(* ===== verification/_CoqProject ===== *)
-Q . S2P
Prelude.v
HeapIface.v
LitChars.v
LitDigits.v
BigUint.v
BigUintBits.v
BigUintDiv.v
BigUintString.v
BigInt.v
BigIntNumber.v
LitStrings.v
BigIntParse.v
MergeSort.v
JmemHeap.v
JmemPointers.v
Jmem.v
JmemRealloc.v
JmemSpec.v
Values.v
BlockHeap.v
MagicStrings.v
MagicTable.v
StringData.v
Decimal.v
StringRepr.v
StringAccess.v
Ownership.v
Counting.v
Release.v
Strings.v
StringTheory.v
StringJoin.v
StringCut.v
StringInput.v
StringBuilder.v
LineInfo.v
LineInfoCreate.v
LineInfoTheory.v
Escapes.v
EscapesTheory.v
PropNames.v
PropHashmap.v
PropProbing.v
Properties.v
PropState.v
PropMemory.v
PropCache.v
PropMap.v
PropCreate.v
PropDelete.v
PropUpdate.v
PropHeap.v
PropDemo.v
PropSpec.v
GcHeap.v
GcMark.v
Gc.v
GcFree.v
GcMarking.v
GcChains.v
GcRun.v
GcSweep.v
GcRelease.v
GcObject.v
GcClean.v
GcHeapOk.v
GcSpec.v
JobQueue.v
Promise.v
JobRun.v
PromiseInv.v
PromiseChanges.v
PromiseSafe.v
PromiseCalls.v
PromiseSpec.v
PromiseAll.v
Binary64.v
Dates.v
DateTheory.v
DateSpec.v
