(* ===== verification/Prelude.v ===== *)
(** * JJS: a verification of the engine's self-contained cores

    JJS is a JavaScript engine in C: src/jjs-core holds the memory manager
    (jmem), the literal and character tables (lit), the parser and the regular
    expression compiler (parser), the byte-code interpreter (vm), the object
    model with the built-in objects (ecma) and the embedding interface (api);
    src/jjs-main and src/jjs-pack are programs on top of it.  This development
    models the parts of the engine whose behaviour is determined by their own
    code: the memory manager, the tagging and the reference counts of values,
    the strings of the engine with the literal and magic strings under them,
    the storage of properties in objects with its hash map and lookup cache, the
    garbage collector, promises and the job queue, dates, arbitrary precision
    arithmetic, the conversions between BigInts, numbers and text, the encodings of
    strings, character classes and escapes, sorting, and the line info that ties
    byte code to source positions.

    ** How the modelled parts fit together

    A BigInt value of the language is zero or a sign and a magnitude
    (ecma-bigint.c); every operator works on the magnitudes through
    ecma-big-uint.c, which allocates its results from the heap of jmem and
    reports a failed or too large request as NULL, which the operators turn
    into a range error.  Source text and strings are CESU-8 byte sequences
    (lit-strings.c), read by the BigInt parser with the character classes of
    lit-char-helpers.c and written by the BigInt printer.  Numbers are binary64
    patterns (ecma-helpers-number.c).  All of them take their memory from jmem:
    a list of free regions in address order for large blocks, 32-byte cells on
    pages of the same heap for small ones, and calls to the garbage collector
    when a request cannot be served.

    An object keeps its properties in a chain of pairs; the names are tagged
    words that stand for magic strings, integers or referenced strings, a hash
    map in front of the chain and a cache shared by all objects speed the search
    up, and each is kept in step by every creation and deletion
    (ecma-helpers.c, ecma-property-hashmap.c, ecma-lcache.c).  The collector
    (ecma-gc.c) finds the objects that are reached from referenced ones by
    visiting properties and the fields of each class, follows chains of
    ephemerons, and releases the others with what they own.

    A promise (ecma-promise-object.c) keeps the reactions that wait for it and,
    when it is settled, enqueues a job for each of them (ecma-jobqueue.c); the
    embedder runs the jobs, which call functions of the program, which settle
    other promises.

    A date is a number, the milliseconds since 1970 in UTC, or NaN; the helpers
    (ecma-builtin-helpers-date.c) take fields from it and make it of fields, and
    the constructor and Date.prototype (ecma-builtin-date.c,
    ecma-builtin-date-prototype.c) read, set, print and parse it with them, in UTC
    or with the adjustment of a zone that the platform gives.

    - Prelude: machine integers as Z with their wrap-around, tactics and
      general lemmas.
    - HeapIface: the class [HeapAlloc] of allocators (what jmem promises to its
      clients), the state monad [M] of code that allocates, and [wp], the
      calculus in which results and bytes held are stated together.
    - BigUint, BigUintBits, BigUintDiv, BigUintString: ecma-big-uint.c, whole.
      A digit buffer is a list of 32-bit words, least significant first; a
      pointer walk is a recursion; [big_uint_value] is the abstraction to Z
      and [big_uint_wf] the invariant (digits in range, no leading zero, size
      field in agreement).
    - BigInt: the operators of ecma-bigint.c.
    - BigIntNumber: its conversions from and to numbers and mixed comparisons,
      with the number helpers they use.
    - BigIntParse: its parser, printer and the exchange with the embedder.
    - LitChars: lit-char-helpers.c; LitDigits: its digits and their values.
      LitStrings: lit-strings.c and the trimming of ecma-helpers-string.c.
    - Escapes, EscapesTheory: the URI functions, escape and unescape of
      ecma-builtin-global.c.
    - MergeSort: ecma-builtin-helpers-sort.c.
    - JmemHeap: the list of free regions of jmem-heap.c.  Memory is a map from
      addresses to slots, so that list headers, cells, pages and client data
      share it; [heap_ok] ties it to a list of tiles.  Jmem: the cell allocator,
      allocation under growing pressure and the state invariant [mem_rep];
      JmemRealloc: reallocation; JmemSpec: the specification of an allocator,
      the runs of the code as a step relation, and the theorems.
    - Values: the tagged words of ecma-globals.h and ecma-helpers-value.c.
    - BlockHeap: the heap as the engine's values use it, a map from addresses to
      typed blocks; a monad of programs that allocate, read and write blocks, and
      the calculus [runs] for them.
    - MagicStrings, MagicTable: the searches of lit-magic-strings.c and the
      generated table, with its order proved.
    - StringData, StringRepr, StringAccess: the descriptors of ecma-helpers-string.c
      and what is read from a string, its one representation ([string_at]), and
      the theorems on reading and comparing; Decimal: the decimal numbers in them.
    - Ownership, Counting, Release: references to strings, objects, exceptions and
      BigInts (ecma_copy_value, ecma_free_value, the ecma_deref functions) and the
      invariant [counted], that every counter is the number of references.
    - Strings, StringTheory, StringJoin, StringCut, StringInput, StringBuilder: the
      functions of ecma-helpers-string.c that make strings: from buffers, numbers
      and code units; by concatenation; substrings and trimming; conversions of the
      embedder's encodings; and the string builders.
    - LineInfo, LineInfoCreate, LineInfoTheory: ecma-line-info.c and
      js-parser-line-info-create.c.
    - PropNames, PropHashmap, Properties: the names of properties, the hash map
      and the functions of ecma-helpers.c that find, create and delete
      properties, with the cache of ecma-lcache.c.  The state is the record
      [pworld]: objects with the cells of their chains, hash maps, the cache, and
      a log of the references that are taken and given back.  What comes from
      elsewhere are the classes [PropertyNames] (hashes and equality of name
      strings) and [PropertyHeap] (which requests are served), with the instances
      [string_names] (from StringData) and [jmem_lists] (from the memory manager)
      in PropHeap.  PropProbing, PropState, PropMemory, PropCache, PropMap: the
      invariant of that state; PropCreate, PropDelete, PropUpdate: that the
      operations preserve it; PropDemo: runs; PropSpec: the abstract
      specification, a finite map in order of creation, and the refinement.
    - GcHeap: what the collector sees of the heap: objects with a reference
      count, a colour, properties and a body by their type; the blocks that
      belong to one object are fields of its record.  GcMark: the visits of one
      object as data; Gc: ecma_gc_mark with its limit on nesting, and the chains
      of grey objects; GcFree: the release of objects and properties, the sweep
      and ecma_gc_run.  GcMarking, GcChains, GcRun: what marking reaches;
      GcSweep, GcRelease, GcObject, GcClean: releases and weak references;
      GcHeapOk: the whole collection, the invariant [gc_ok] of heaps without
      dangling references and a checker that decides it; GcSpec: the claims, and
      a heap on which they are run.

    - JobQueue: the values, objects and jobs that promises deal with, the
      enqueuing functions of ecma-jobqueue.c, and that the linked queue is a list.
      Promise: ecma-promise-object.c.  A
      native function that waits for a call is a frame, and its code runs to the
      next call of a function or to its return; a failed assertion is [None].
      JobRun: the processing of jobs, the actions of the program, the embedder and
      the interpreter, which of them are [admissible], and the step relation with
      the states it reaches.  PromiseInv, PromiseChanges, PromiseSafe, PromiseCalls: the invariant of these
      states and that every action keeps it.  PromiseSpec: the claims, and a run.
      PromiseAll: Promise.all, allSettled and any: the helper around their loops,
      which closes the iterator and rejects when an exception leaves them, the loops,
      and the functions that are handed to then (element functions and those of the
      capability), against every order in which those are called; what the iterator,
      resolve, then and the capability's functions do are events.

    - Binary64: the arithmetic of doubles on bit patterns, as rounded quotients of
      integers, exact on integers up to 2^53.  Dates: ecma-builtin-helpers-date.c, in
      binary64 and in int32_t, where an overflow is [None], with the adjustment of
      the zone as a parameter; ecma-builtin-date.c, what conversions of arguments
      deliver being given; and ecma-builtin-date-prototype.c.  DateTheory: the
      proleptic Gregorian calendar as a reference, and the helpers against it.
      DateSpec: fields, getters and setters; what is printed and parsed; what
      objects hold; and, as Examples, the faults.

    ** What the theorems show

    - Every operation on magnitudes computes the corresponding operation on
      integers, delivers a well-formed number, fails only when the result is
      too large or the heap refuses, and leaves exactly the bytes of its
      result allocated (BigUint, BigUintBits, BigUintDiv, BigUintString).
      The division is proved for the runs that satisfy [div_guard_sound]; an
      input outside of them, where the coded guess of the quotient digit is
      wrong, is exhibited.
    - The BigInt operators are the operators of ECMA-262 on the integers:
      truncating division, arithmetic shifts, bitwise operators on infinite
      two's complement numbers, order and equality; errors are exactly those
      the standard and the heap ask for; references are balanced (BigInt).
    - Numbers convert exactly or are rejected, mixed comparisons order by exact
      value, and conversion to a number rounds to nearest, ties to even, except
      for an exactly described set of inputs just above a tie (BigIntNumber).
    - Parsing reads every well-formed literal to its value, printing and
      parsing are inverse, and 64-bit digits round trip (BigIntParse).
    - The validators accept exactly the encodings, with and without the strict
      option (with one exactly described exception), the decoders invert the encoders, and the conversions between
      CESU-8, UTF-8 and UTF-16 are exact (LitStrings); the binary searches decide
      membership (LitChars).
    - Sorting is correct and stable for total preorders, and safe for every
      comparison, throwing and inconsistent ones included (MergeSort).

    - Every run of the memory manager refines the specification of an allocator
      with garbage: blocks are fresh, aligned, apart and keep their contents;
      the code never follows anything that is not there, its accounts are
      exact, and it fails only when memory is exhausted (JmemSpec).

    - A tagged word determines the value it stands for (Values); copying and
      releasing values keeps every counter equal to the number of references, and
      nothing is left when no reference is (Release).
    - Every string of the engine has one representation: the functions that make
      strings produce it, with the characters they should have and exact counters,
      comparison is comparison of characters, and reading functions return what
      the characters say (StringAccess, StringInput, StringJoin, StringCut,
      StringBuilder); the searches for magic strings are exact on the generated
      table (MagicTable).
    - The line info that the parser generates answers every byte code offset with
      the last position recorded at or before it, for positions less than 127 bytes
      apart; [far_positions_lose_a_line] has some farther apart (LineInfoTheory).
    - Decoding a URI inverts encoding it, as unescape inverts escape; each of these
      functions delivers what the language says or fails where the language does,
      except that the escapes of overlong sequences F0 81..8F are decoded, with
      which the result is exactly described too (EscapesTheory).
    - The properties of an object are a finite map in order of creation: every
      operation on the chain, the hash map and the cache together is the operation
      on that map, with the references of names and values balanced, whatever the
      heap refuses (PropSpec).
    - A collection releases exactly the objects that are not reached from a
      referenced one, leaves the others as they are but for the link of the chain and the
      weak knowledge of released objects, leaves no reference to a released object,
      and running it again releases nothing; the limit on nested marking does not
      change the result unless it is zero, where an Example has a collection that
      releases reached objects (GcSpec).
    - Every admissible action of a reachable state runs to its end without a failed
      assertion; a settled promise keeps its state and result; settling a promise
      schedules its reactions once each and in order, and jobs start in the order
      in which they were enqueued.  A resolving function settles its promise or does
      nothing, as the flag of the promise says, and the job of a thenable, which
      clears that flag, makes the old functions work once more; actions that are not
      admissible and on which an assertion fails are Examples (PromiseSpec).  The
      combinators collect every outcome at its index and call their capability when
      all promises are settled, for allSettled as long as each function then calls one
      of the two element functions at most (an Example has one that calls both); when
      resolve of the capability throws at the end of the loop, reject is called as
      well (PromiseAll).
    - The getters deliver the one tuple of fields of the calendar that has the time;
      the setters make the time of the replaced fields, for years within 400000 and
      like bounds on the others; parsing inverts toISOString, and, up to the
      milliseconds, toUTCString and, away from changes of the zone, toString; an
      object always holds a time in range or NaN, and what reads it never fails;
      toDateString and toTimeString print UTC instead of the local time.  Local times
      near a change of the zone, overflows for far years and months and the year
      -000000 are Examples (DateSpec).

    ** Conventions, bounds and fuel

    A claimed property is a theorem with a comment that starts with its number
    C<n>, and a property with hypotheses is followed by a witness, the same
    theorem at a concrete input.  Unsigned integers of width w are in
    [0, 2^w) and every operation that can wrap around is written with its
    wrap-around (u8, u16, u32, u64).  A read outside of a buffer is [None] or a
    distinguished outcome, and the theorems exclude it.  Loops are structural
    recursions on the data they walk where there are such data.  Where there are
    none the functions carry fuel: the exponent's 32 bits for powers, the bits
    of the number for printing, the length of the string for scanning, 33 passes
    for sorting, the bytes of the heap area for the walks over regions and
    pages, two nested allocations (a cell asks for a page, a page is no cell),
    three steps of memory pressure, the number of cells for a chain of
    properties, the number of objects for the rounds and the nesting of the
    collector, the length of the queue for its release; the correctness theorems state the result itself, so they also
    show that the fuel is enough.  The configuration is the default one: 32-bit
    digits and compressed pointers, binary64 numbers, BigInts and ES.next
    built-ins enabled.

    ** What is not modelled

    The parser but for its line info, the byte-code compiler and interpreter, the
    internal methods of objects and the built-in objects that are glue around
    them, modules, snapshots, the embedding interface, and the regular expression
    engine; ecma_bigint_to_bigint, which dispatches on objects.  Of the strings:
    the conversions between numbers and strings that compute in floating point,
    a theorem on the strings made from UTF-16 (the function is modelled, and two runs
    show its wrong lengths and missing searches), ecma_string_pad and the literal storage; the branch of ecma_string_get_chars
    without a buffer is only taken by callers that are modelled with one, and
    strings longer than 2^32 - 1 bytes cannot exist in a heap of that size.
    Addresses are relative to the heap area.  Platform code, command line tools,
    the debugger transport and the generated Unicode tables are left out: the
    tables are a parameter of the searches over them.  What the memory manager
    sees of the garbage collector are the blocks a collection releases: those the
    engine cannot reach, and the property hash maps.  The collector logs the
    values, blocks and callbacks it releases in order, and the sizes of structures
    are symbols; releasing a template object may drop references through its byte
    code, which is logged only; the entry that the property search of
    ecma_op_object_unref_weak leaves in the lookup cache is not modelled.  Of the
    promises: Promise.race, the aggregate error of Promise.any, which is made of the
    collected values with the array iterator taken to be the built-in one, the hooks of the embedder (JJS_PROMISE_CALLBACK), the
    queue of asynchronous generators, and what the interpreter does when a job
    resumes a function, which is an action that any function may take.  Of the
    dates: toJSON and Symbol.toPrimitive, which call other methods of the object,
    and the platform's clock and zones. *)
From Stdlib Require Import ZArith List Lia Bool.
Import ListNotations.
#[local] Open Scope Z_scope.

(** ** Machine integers

    An unsigned C integer of width [w] is a [Z] in [[0, 2^w)]; the casts below
    are the wrap-around the C conversions perform. *)

Abbreviation B8 := 256 (only parsing).
Abbreviation B16 := 65536 (only parsing).
Abbreviation B32 := 4294967296 (only parsing).
Abbreviation B64 := 18446744073709551616 (only parsing).

Definition u8 (z : Z) : Z := z mod B8.
Definition u16 (z : Z) : Z := z mod B16.
Definition u32 (z : Z) : Z := z mod B32.
Definition u64 (z : Z) : Z := z mod B64.

Definition is_u8 (z : Z) : Prop := 0 <= z < B8.
Definition is_u16 (z : Z) : Prop := 0 <= z < B16.
Definition is_u32 (z : Z) : Prop := 0 <= z < B32.
Definition is_u64 (z : Z) : Prop := 0 <= z < B64.

Declare Scope word_scope.
Delimit Scope word_scope with word.
Notation "a +32 b" := (u32 (a + b)) (at level 50, left associativity) : word_scope.
Notation "a -32 b" := (u32 (a - b)) (at level 50, left associativity) : word_scope.
Notation "a <<32 b" := (u32 (Z.shiftl a b)) (at level 45, left associativity) : word_scope.
Notation "a >> b" := (Z.shiftr a b) (at level 45, left associativity) : word_scope.
Notation "a &' b" := (Z.land a b) (at level 46, left associativity) : word_scope.
Notation "a |' b" := (Z.lor a b) (at level 48, left associativity) : word_scope.
Notation "a ^^ b" := (Z.lxor a b) (at level 47, left associativity) : word_scope.

(** Reduce a modulus / division goal to linear facts. *)
Ltac zmod := unfold u8, u16, u32, u64, is_u8, is_u16, is_u32, is_u64 in *;
  Z.div_mod_to_equations; try lia.

(** Case analysis on every boolean comparison of integers in sight. *)
Ltac zbool :=
  repeat match goal with
    | H : (_ <? _) = true |- _ => apply Z.ltb_lt in H
    | H : (_ <? _) = false |- _ => apply Z.ltb_ge in H
    | H : (_ <=? _) = true |- _ => apply Z.leb_le in H
    | H : (_ <=? _) = false |- _ => apply Z.leb_gt in H
    | H : (_ =? _) = true |- _ => apply Z.eqb_eq in H
    | H : (_ =? _) = false |- _ => apply Z.eqb_neq in H
    | H : (_ && _)%bool = true |- _ => apply andb_prop in H; destruct H
    | H : (_ || _)%bool = false |- _ => apply orb_false_elim in H; destruct H
    | H : negb _ = true |- _ => apply negb_true_iff in H
    | H : negb _ = false |- _ => apply negb_false_iff in H
    end.

(** Partial functions: [None] is a read outside of a buffer, or a step that does
    not exist. *)
Declare Scope partial_scope.
Notation "'let?' p := m 'in' k" := (match m with Some p => k | None => None end)
  (at level 200, p pattern, m at level 100, k at level 200, right associativity) : partial_scope.

(** Split conjunctions only (never an equation or an interval). *)
Ltac splits := repeat match goal with |- _ /\ _ => split end.

Ltac zcase :=
  match goal with
  | |- context [if ?b then _ else _] => let E := fresh "E" in destruct b eqn:E
  end; zbool.

Lemma u32_small z : is_u32 z -> u32 z = z.
Proof. intros; unfold u32, is_u32 in *; apply Z.mod_small; lia. Qed.

Lemma u32_range z : is_u32 (u32 z).
Proof. unfold u32, is_u32; apply Z.mod_pos_bound; lia. Qed.

Lemma u32_eq z : exists k, u32 z = z - k * B32.
Proof. exists (z / B32); zmod. Qed.

(** Split a hypothesis on a pair without computing its components. *)
Ltac intro_pair := rewrite pair_equal_spec; intros [<- <-].
Ltac intro_triple := rewrite !pair_equal_spec; intros [[<- <-] <-].

(** Wrap-around of one addition or subtraction, as the overflow tests of the
    code see it. *)
Lemma u32_add_cases a b : is_u32 a -> is_u32 b ->
  (a + b < B32 /\ u32 (a + b) = a + b) \/ (B32 <= a + b /\ u32 (a + b) = a + b - B32).
Proof.
  unfold is_u32, u32. intros. destruct (Z.lt_ge_cases (a + b) B32); [left | right].
  - split; [lia | apply Z.mod_small; lia].
  - split; [lia |]. symmetry. apply (Z.mod_unique _ _ 1); lia.
Qed.

Lemma u32_sub_cases a b : is_u32 a -> is_u32 b ->
  (b <= a /\ u32 (a - b) = a - b) \/ (a < b /\ u32 (a - b) = a - b + B32).
Proof.
  unfold is_u32, u32. intros. destruct (Z.lt_ge_cases a b); [right | left].
  - split; [lia |]. symmetry. apply (Z.mod_unique _ _ (-1)); lia.
  - split; [lia | apply Z.mod_small; lia].
Qed.

(** Replace every wrapped sum or difference of words by its two cases. *)
Ltac word_cases :=
  repeat match goal with
    | |- context [u32 (?a + ?b)] =>
        let H := fresh in
        pose proof (u32_add_cases a b ltac:(unfold is_u32 in *; lia) ltac:(unfold is_u32 in *; lia)) as H;
        let x := fresh "w" in set (x := u32 (a + b)) in *; clearbody x; destruct H as [[? ->] | [? ->]]
    | |- context [u32 (?a - ?b)] =>
        let H := fresh in
        pose proof (u32_sub_cases a b ltac:(unfold is_u32 in *; lia) ltac:(unfold is_u32 in *; lia)) as H;
        let x := fresh "w" in set (x := u32 (a - b)) in *; clearbody x; destruct H as [[? ->] | [? ->]]
    | |- context [if ?a <? ?b then _ else _] => destruct (Z.ltb_spec a b)
    | |- context [if ?a =? ?b then _ else _] => destruct (Z.eqb_spec a b)
    end.

Create HintDb word discriminated.
Create Rewrite HintDb word.
#[export] Hint Resolve u32_range : word.
#[export] Hint Rewrite u32_small using (unfold is_u32 in *; lia) : word.

(** ** Bit-level facts about powers of two *)

Lemma land_ones' z n m : m = 2 ^ n - 1 -> 0 <= n -> Z.land z m = z mod 2 ^ n.
Proof. intros -> Hn. rewrite <- Z.land_ones by lia. now rewrite Z.ones_equiv, Z.sub_1_r. Qed.

Lemma lor_add_disjoint a b : Z.land a b = 0 -> Z.lor a b = a + b.
Proof. intros H. rewrite <- Z.lxor_lor by assumption. symmetry. now apply Z.add_nocarry_lxor. Qed.

(** A value below [2^n] and a multiple of [2^n] share no bit. *)
Lemma lor_shiftl_low a b n : 0 <= n -> 0 <= b < 2 ^ n -> Z.lor (Z.shiftl a n) b = a * 2 ^ n + b.
Proof.
  intros Hn Hb. rewrite lor_add_disjoint.
  - now rewrite Z.shiftl_mul_pow2 by lia.
  - apply Z.bits_inj'. intros i Hi. rewrite Z.land_spec, Z.bits_0.
    destruct (Z.lt_ge_cases i n).
    + rewrite Z.shiftl_spec_low by lia. reflexivity.
    + rewrite <- (Z.mod_small b (2 ^ n)) by lia.
      rewrite Z.mod_pow2_bits_high by lia. apply andb_false_r.
Qed.

Lemma lor_mul_low a b n : 0 <= n -> 0 <= b < 2 ^ n -> Z.lor (a * 2 ^ n) b = a * 2 ^ n + b.
Proof. intros. rewrite <- (lor_shiftl_low a b n) by lia. now rewrite Z.shiftl_mul_pow2 by lia. Qed.

(** ** Lists *)

Lemma Forall_app_inv {A} (P : A -> Prop) l1 l2 :
  Forall P (l1 ++ l2) -> Forall P l1 /\ Forall P l2.
Proof. intros H. apply Forall_app in H. exact H. Qed.

Lemma last_app_single {A} (l : list A) x d : last (l ++ [x]) d = x.
Proof. apply last_last. Qed.

Definition zlength {A} (l : list A) : Z := Z.of_nat (length l).

Lemma zlength_nonneg {A} (l : list A) : 0 <= zlength l.
Proof. unfold zlength; lia. Qed.

Lemma zlength_nil {A} : zlength (@nil A) = 0.
Proof. reflexivity. Qed.

Lemma zlength_cons {A} (x : A) l : zlength (x :: l) = 1 + zlength l.
Proof. unfold zlength; cbn [length]; lia. Qed.

Lemma zlength_app {A} (l1 l2 : list A) : zlength (l1 ++ l2) = zlength l1 + zlength l2.
Proof. unfold zlength; rewrite length_app; lia. Qed.

#[export] Hint Rewrite @zlength_nil @zlength_cons @zlength_app : word.
