(* ===== verification/HeapIface.v ===== *)
(** * The heap, as its clients see it

    The interface between the engine's data structures and the memory manager
    of src/jjs-core/jmem: a class of allocators, the monad of the client code
    that allocates and frees blocks, and the weakest-precondition calculus the
    clients' theorems are stated in.  [jmem_heap_alloc_block_null_on_error]
    may run the garbage collector, so nothing is promised about the state
    except what the client can observe: whether the request succeeded, and how
    many bytes the client itself holds ([heap_live]). *)
From Stdlib Require Import ZArith List Lia Bool.
From S2P Require Import Prelude.
#[local] Open Scope Z_scope.

Class HeapAlloc := {
  heap_state : Type;
  (** jmem_heap_alloc_block_null_on_error: [false] stands for NULL *)
  heap_alloc : Z -> heap_state -> bool * heap_state;
  (** jmem_heap_free_block *)
  heap_free : Z -> heap_state -> heap_state;
  (** bytes requested by the client and not given back yet *)
  heap_live : heap_state -> Z;
  (** the heap never refuses a request *)
  heap_ample : Prop;
  heap_alloc_live : forall n h,
    heap_live (snd (heap_alloc n h)) = heap_live h + (if fst (heap_alloc n h) then n else 0);
  heap_free_live : forall n h, heap_live (heap_free n h) = heap_live h - n;
  heap_ample_alloc : heap_ample -> forall n h, fst (heap_alloc n h) = true
}.

Section Client.
Context {HA : HeapAlloc}.

Definition M (A : Type) : Type := heap_state -> A * heap_state.

Definition ret {A} (a : A) : M A := fun h => (a, h).

Definition bind {A B} (m : M A) (f : A -> M B) : M B :=
  fun h => let (a, h') := m h in f a h'.

Definition jmem_heap_alloc_block_null_on_error (n : Z) : M bool := heap_alloc n.

Definition jmem_heap_free_block (n : Z) : M unit := fun h => (tt, heap_free n h).

(** [wp m Q]: from every heap, [m] ends with a result [a] and a net change of
    [d] client bytes such that [Q a d]. *)
Definition wp {A} (m : M A) (Q : A -> Z -> Prop) : Prop :=
  forall h, Q (fst (m h)) (heap_live (snd (m h)) - heap_live h).

Lemma wp_ret {A} (a : A) (Q : A -> Z -> Prop) : Q a 0 -> wp (ret a) Q.
Proof. intros HQ h; cbn. now rewrite Z.sub_diag. Qed.

Lemma wp_bind {A B} (m : M A) (f : A -> M B) Q :
  wp m (fun a d => wp (f a) (fun b d' => Q b (d + d'))) -> wp (bind m f) Q.
Proof.
  intros Hm h. specialize (Hm h). unfold bind. destruct (m h) as [a h1]; cbn in *.
  specialize (Hm h1). cbn in Hm. destruct (f a h1) as [b h2]; cbn in *.
  now replace (heap_live h2 - heap_live h)
    with (heap_live h1 - heap_live h + (heap_live h2 - heap_live h1)) by lia.
Qed.

Lemma wp_mono {A} (m : M A) (Q Q' : A -> Z -> Prop) :
  wp m Q -> (forall a d, Q a d -> Q' a d) -> wp m Q'.
Proof. intros Hm HQ h. apply HQ, Hm. Qed.

Lemma wp_conj {A} (m : M A) (Q Q' : A -> Z -> Prop) :
  wp m Q -> wp m Q' -> wp m (fun a d => Q a d /\ Q' a d).
Proof. intros H1 H2 h. split; [apply H1 | apply H2]. Qed.

Lemma wp_alloc n (Q : bool -> Z -> Prop) :
  Q true n -> (~ heap_ample -> Q false 0) ->
  wp (jmem_heap_alloc_block_null_on_error n) Q.
Proof.
  intros HT HF h. unfold jmem_heap_alloc_block_null_on_error.
  rewrite heap_alloc_live. destruct (heap_alloc n h) as [[] h'] eqn:E; cbn.
  - now replace (heap_live h + n - heap_live h) with n by lia.
  - replace (heap_live h + 0 - heap_live h) with 0 by lia. apply HF.
    intros Ha. pose proof (heap_ample_alloc Ha n h) as Hok. now rewrite E in Hok.
Qed.

Lemma wp_free n (Q : unit -> Z -> Prop) : Q tt (- n) -> wp (jmem_heap_free_block n) Q.
Proof.
  intros HQ h. cbn. rewrite heap_free_live.
  now replace (heap_live h - n - heap_live h) with (- n) by lia.
Qed.
End Client.

Declare Scope heap_scope.
Delimit Scope heap_scope with heap.
Notation "x <- m ;; k" := (bind m (fun x => k)) (at level 100, m at next level, right associativity) : heap_scope.
Notation "m ;;; k" := (bind m (fun _ => k)) (at level 100, right associativity) : heap_scope.

(** One step of symbolic execution of client code. *)
Ltac wp_step :=
  match goal with
  | |- wp (bind _ _) _ => apply wp_bind
  | |- wp (ret _) _ => apply wp_ret
  | |- wp (jmem_heap_free_block _) _ => apply wp_free
  | |- wp (jmem_heap_alloc_block_null_on_error _) _ => apply wp_alloc
  | |- wp (if ?b then _ else _) _ => let E := fresh "E" in destruct b eqn:E
  | |- wp (let (_, _) := ?p in _) _ => let E := fresh "E" in destruct p eqn:E
  end.

(** Restate the number of bytes held in a postcondition. *)
Ltac held_is e :=
  match goal with |- _ _ ?h => replace h with e; [| symmetry] end; cycle 1.

(** ** A concrete heap for evaluation

    A budget of [heap_capacity] bytes; a request is refused when it does not
    fit.  It discharges the interface without any assumption and lets the
    witnesses run the client code. *)
Record counter_heap := { heap_used : Z; heap_capacity : Z }.

Definition counter_alloc (unlimited : bool) (n : Z) (h : counter_heap) : bool * counter_heap :=
  if unlimited || (heap_used h + n <=? heap_capacity h)
  then (true, {| heap_used := heap_used h + n; heap_capacity := heap_capacity h |})
  else (false, h).

Definition counter_free (n : Z) (h : counter_heap) : counter_heap :=
  {| heap_used := heap_used h - n; heap_capacity := heap_capacity h |}.

#[export] Instance CounterHeap (unlimited : bool) : HeapAlloc.
Proof.
  refine {| heap_state := counter_heap; heap_alloc := counter_alloc unlimited;
            heap_free := counter_free; heap_live := heap_used;
            heap_ample := unlimited = true |}.
  - intros n h. unfold counter_alloc. destruct (_ || _); cbn; lia.
  - reflexivity.
  - intros -> n h. reflexivity.
Defined.

Definition empty_heap (capacity : Z) : counter_heap :=
  {| heap_used := 0; heap_capacity := capacity |}.
