(* ===== verification/LitChars.v ===== *)
(** * Character classes: src/jjs-core/lit/lit-char-helpers.c

    The constants and predicates on characters the string and number code
    uses, and the two binary searches (over single characters and over
    intervals) behind the Unicode tables.  The searches are proved to decide
    membership for every sorted table. *)
From Stdlib Require Import ZArith List Lia Bool Sorted.
From S2P Require Import Prelude.
Import ListNotations.
#[local] Open Scope Z_scope.

Definition LIT_CHAR_TAB : Z := 9.
Definition LIT_CHAR_LF : Z := 10.
Definition LIT_CHAR_CR : Z := 13.
Definition LIT_CHAR_SP : Z := 32.
Definition LIT_CHAR_BOM : Z := 65279.
Definition LIT_CHAR_LS : Z := 8232.
Definition LIT_CHAR_PS : Z := 8233.
Definition LIT_CHAR_DOLLAR_SIGN : Z := 36.
Definition LIT_CHAR_PLUS : Z := 43.
Definition LIT_CHAR_MINUS : Z := 45.
Definition LIT_CHAR_0 : Z := 48.
Definition LIT_CHAR_1 : Z := 49.
Definition LIT_CHAR_7 : Z := 55.
Definition LIT_CHAR_9 : Z := 57.
Definition LIT_CHAR_UNDERSCORE : Z := 95.
Definition LIT_CHAR_LOWERCASE_A : Z := 97.
Definition LIT_CHAR_LOWERCASE_B : Z := 98.
Definition LIT_CHAR_LOWERCASE_F : Z := 102.
Definition LIT_CHAR_LOWERCASE_O : Z := 111.
Definition LIT_CHAR_LOWERCASE_X : Z := 120.
Definition LIT_CHAR_LOWERCASE_Z : Z := 122.

Definition LEXER_TO_ASCII_LOWERCASE (character : Z) : Z := Z.lor character LIT_CHAR_SP.

(** ** Binary search *)

(** array[middle] *)
Definition element (array : list Z) (i : Z) : Z := nth (Z.to_nat i) array 0.

(** The loop of LIT_SEARCH_CHAR_IN_ARRAY_FN; [None] when the fuel runs out *)
Fixpoint search_char_loop (fuel : nat) (c : Z) (array : list Z) (bottom top : Z) : option bool :=
  match fuel with
  | O => None
  | S fuel' =>
      if bottom <=? top then
        let middle := Z.quot (bottom + top) 2 in
        let current := element array middle in
        if current =? c then Some true
        else if c <? current then search_char_loop fuel' c array bottom (middle - 1)
        else search_char_loop fuel' c array (middle + 1) top
      else Some false
  end.

Definition lit_search_char_in_array (c : Z) (array : list Z) : option bool :=
  search_char_loop (S (length array)) c array 0 (zlength array - 1).

(** The loop of LIT_SEARCH_CHAR_IN_INTERVAL_ARRAY_FN *)
Fixpoint search_interval_loop (fuel : nat) (c : Z) (array_sp lengths : list Z) (bottom top : Z) : option bool :=
  match fuel with
  | O => None
  | S fuel' =>
      if bottom <=? top then
        let middle := Z.quot (bottom + top) 2 in
        let current_sp := element array_sp middle in
        if (current_sp <=? c) && (c <=? current_sp + element lengths middle) then Some true
        else if current_sp <? c then search_interval_loop fuel' c array_sp lengths (middle + 1) top
        else search_interval_loop fuel' c array_sp lengths bottom (middle - 1)
      else Some false
  end.

Definition lit_search_char_in_interval_array (c : Z) (array_sp lengths : list Z) : option bool :=
  search_interval_loop (S (length array_sp)) c array_sp lengths 0 (zlength array_sp - 1).

(** ** Predicates *)

(** The White_Space tables of lit-unicode-ranges.inc.h *)
Definition lit_unicode_white_space_interval_starts : list Z := [8192].
Definition lit_unicode_white_space_interval_lengths : list Z := [10].
Definition lit_unicode_white_space_chars : list Z := [160; 5760; 8239; 8287; 12288].

Definition found (r : option bool) : bool := match r with Some b => b | None => false end.

Definition lit_char_is_white_space (c : Z) : bool :=
  if c <=? 127 then (c =? LIT_CHAR_SP) || ((LIT_CHAR_TAB <=? c) && (c <=? LIT_CHAR_CR))
  else if (c =? LIT_CHAR_BOM) || (c =? LIT_CHAR_LS) || (c =? LIT_CHAR_PS) then true
  else
    (c <=? 65535)
    && (((element lit_unicode_white_space_interval_starts 0 <=? c)
         && (c <=? element lit_unicode_white_space_interval_starts 0 + element lit_unicode_white_space_interval_lengths 0))
        || found (lit_search_char_in_array (u16 c) lit_unicode_white_space_chars)).

Definition lit_char_is_line_terminator (c : Z) : bool :=
  (c =? LIT_CHAR_LF) || (c =? LIT_CHAR_CR) || (c =? LIT_CHAR_LS) || (c =? LIT_CHAR_PS).

Definition is_ascii_letter (c : Z) : bool :=
  (LIT_CHAR_LOWERCASE_A <=? LEXER_TO_ASCII_LOWERCASE c) && (LEXER_TO_ASCII_LOWERCASE c <=? LIT_CHAR_LOWERCASE_Z).

(** The generated ID_Start and ID_Continue tables: intervals and characters of
    the basic plane and of the supplementary planes *)
Record id_tables := mk_id_tables {
  interval_starts : list Z;
  interval_lengths : list Z;
  chars : list Z;
  interval_starts_sup : list Z;
  interval_lengths_sup : list Z;
  chars_sup : list Z
}.

Definition search_tables (t : id_tables) (code_point : Z) : bool :=
  if 65536 <=? code_point then
    found (lit_search_char_in_interval_array code_point (interval_starts_sup t) (interval_lengths_sup t))
    || found (lit_search_char_in_array code_point (chars_sup t))
  else
    let c := u16 code_point in
    found (lit_search_char_in_interval_array c (interval_starts t) (interval_lengths t))
    || found (lit_search_char_in_array c (chars t)).

Definition lit_char_is_unicode_id_start (id_start : id_tables) (code_point : Z) : bool := search_tables id_start code_point.

(** Each ID_Start codepoint is ID_Continue as well. *)
Definition lit_char_is_unicode_id_continue (id_start id_continue : id_tables) (code_point : Z) : bool :=
  if lit_char_is_unicode_id_start id_start code_point then true else search_tables id_continue code_point.

Definition lit_code_point_is_identifier_start (id_start : id_tables) (code_point : Z) : bool :=
  if code_point <=? 127 then
    is_ascii_letter code_point || (code_point =? LIT_CHAR_DOLLAR_SIGN) || (code_point =? LIT_CHAR_UNDERSCORE)
  else lit_char_is_unicode_id_start id_start code_point.

Definition lit_code_point_is_identifier_part (id_start id_continue : id_tables) (code_point : Z) : bool :=
  if code_point <=? 127 then
    is_ascii_letter code_point || ((LIT_CHAR_0 <=? code_point) && (code_point <=? LIT_CHAR_9))
    || (code_point =? LIT_CHAR_DOLLAR_SIGN) || (code_point =? LIT_CHAR_UNDERSCORE)
  else lit_char_is_unicode_id_continue id_start id_continue code_point.

Definition lit_char_is_octal_digit (c : Z) : bool := (LIT_CHAR_0 <=? c) && (c <=? LIT_CHAR_7).
Definition lit_char_is_decimal_digit (c : Z) : bool := (LIT_CHAR_0 <=? c) && (c <=? LIT_CHAR_9).
Definition lit_char_is_binary_digit (c : Z) : bool := (c =? LIT_CHAR_0) || (c =? LIT_CHAR_1).

Definition lit_char_is_hex_digit (c : Z) : bool :=
  lit_char_is_decimal_digit c
  || ((LIT_CHAR_LOWERCASE_A <=? LEXER_TO_ASCII_LOWERCASE c) && (LEXER_TO_ASCII_LOWERCASE c <=? LIT_CHAR_LOWERCASE_F)).

Definition lit_char_to_radix (c : Z) : Z :=
  let l := LEXER_TO_ASCII_LOWERCASE c in
  if l =? LIT_CHAR_LOWERCASE_X then 16
  else if l =? LIT_CHAR_LOWERCASE_O then 8
  else if l =? LIT_CHAR_LOWERCASE_B then 2
  else 10.

(** ** The searches decide membership *)

Definition sorted_array (array : list Z) : Prop :=
  forall i j, 0 <= i < j -> j < zlength array -> element array i < element array j.

Definition sorted_intervals (array_sp lengths : list Z) : Prop :=
  zlength lengths = zlength array_sp
  /\ (forall i j, 0 <= i < j -> j < zlength array_sp -> element array_sp i + element lengths i < element array_sp j)
  /\ (forall i, 0 <= i < zlength array_sp -> 0 <= element lengths i).

(** A loop that halves a range *)
Lemma middle_bounds bottom top : 0 <= bottom <= top -> bottom <= Z.quot (bottom + top) 2 <= top.
Proof. intros H. rewrite Z.quot_div_nonneg by lia. Z.div_mod_to_equations; lia. Qed.

Lemma search_char_loop_spec fuel c array : sorted_array array -> forall bottom top,
  0 <= bottom -> top < zlength array -> bottom <= top + 1 -> top - bottom + 1 < Z.of_nat fuel ->
  exists b, search_char_loop fuel c array bottom top = Some b
    /\ (b = true <-> exists i, bottom <= i <= top /\ element array i = c).
Proof.
  intros Hs. induction fuel as [|fuel IH]; intros bottom top Hb Ht Hbt Hf; [exists false; lia |]. cbn [search_char_loop].
  destruct (Z.leb_spec bottom top) as [Hle|Hgt].
  2: { exists false. split; [reflexivity |]. split; [discriminate | intros (i & Hi & _); lia]. }
  pose proof (middle_bounds bottom top ltac:(lia)) as Hm. cbv zeta. set (m := Z.quot (bottom + top) 2) in *.
  destruct (Z.eqb_spec (element array m) c) as [E|E].
  { exists true. split; [reflexivity |]. split; [| reflexivity]. intros _. now exists m. }
  destruct (Z.ltb_spec c (element array m)) as [Hc|Hc].
  - destruct (IH bottom (m - 1)) as (b & Eb & Hb'); try lia. exists b. split; [assumption |]. rewrite Hb'.
    split; intros (i & Hi & Ei); exists i; (split; [| assumption]); [lia |].
    destruct (Z.lt_total i m) as [|[->|Hg]]; [lia | congruence |].
    pose proof (Hs m i ltac:(lia) ltac:(lia)). lia.
  - destruct (IH (m + 1) top) as (b & Eb & Hb'); try lia. exists b. split; [assumption |]. rewrite Hb'.
    split; intros (i & Hi & Ei); exists i; (split; [| assumption]); [lia |].
    destruct (Z.lt_total i m) as [Hl|[->|]]; [| congruence | lia].
    pose proof (Hs i m ltac:(lia) ltac:(lia)). lia.
Qed.

Lemma search_interval_loop_spec fuel c array_sp lengths : sorted_intervals array_sp lengths -> forall bottom top,
  0 <= bottom -> top < zlength array_sp -> bottom <= top + 1 -> top - bottom + 1 < Z.of_nat fuel ->
  exists b, search_interval_loop fuel c array_sp lengths bottom top = Some b
    /\ (b = true <-> exists i, bottom <= i <= top /\ element array_sp i <= c <= element array_sp i + element lengths i).
Proof.
  intros (Hlen & Hs & Hn). induction fuel as [|fuel IH]; intros bottom top Hb Ht Hbt Hf; [exists false; lia |]. cbn [search_interval_loop].
  destruct (Z.leb_spec bottom top) as [Hle|Hgt].
  2: { exists false. split; [reflexivity |]. split; [discriminate | intros (i & Hi & _); lia]. }
  pose proof (middle_bounds bottom top ltac:(lia)) as Hm. cbv zeta. set (m := Z.quot (bottom + top) 2) in *.
  destruct (_ && _) eqn:E.
  { exists true. split; [reflexivity |]. split; [| reflexivity]. intros _. exists m. zbool. lia. }
  apply andb_false_iff in E. pose proof (Hn m ltac:(lia)).
  destruct (Z.ltb_spec (element array_sp m) c) as [Hc|Hc].
  - destruct (IH (m + 1) top) as (b & Eb & Hb'); try lia. exists b. split; [assumption |]. rewrite Hb'.
    split; intros (i & Hi & Ei); exists i; (split; [| assumption]); [lia |].
    destruct (Z.lt_total i m) as [Hl|[->|]]; [| destruct E; zbool; lia | lia].
    pose proof (Hs i m ltac:(lia) ltac:(lia)). lia.
  - destruct (IH bottom (m - 1)) as (b & Eb & Hb'); try lia. exists b. split; [assumption |]. rewrite Hb'.
    split; intros (i & Hi & Ei); exists i; (split; [| assumption]); [lia |].
    destruct (Z.lt_total i m) as [|[->|Hg]]; [lia | destruct E; zbool; lia |].
    pose proof (Hs m i ltac:(lia) ltac:(lia)). pose proof (Hn i ltac:(lia)). lia.
Qed.

Lemma element_In c array : In c array <-> exists i, 0 <= i <= zlength array - 1 /\ element array i = c.
Proof.
  unfold element, zlength. split.
  - intros H. apply (In_nth _ _ 0) in H as (n & Hn & E). exists (Z.of_nat n). rewrite Nat2Z.id. split; [lia | assumption].
  - intros (i & Hi & <-). apply nth_In. lia.
Qed.

(** The binary searches behind the character classes end and decide
    membership: in the array, respectively in one of the intervals, for every
    strictly sorted table. *)
Theorem lit_search_correct c array array_sp lengths : sorted_array array -> sorted_intervals array_sp lengths ->
  (exists b, lit_search_char_in_array c array = Some b /\ (b = true <-> In c array))
  /\ (exists b, lit_search_char_in_interval_array c array_sp lengths = Some b
        /\ (b = true <-> exists i, 0 <= i < zlength array_sp /\ element array_sp i <= c <= element array_sp i + element lengths i)).
Proof.
  intros Ha Hi. split.
  - destruct (search_char_loop_spec (S (length array)) c array Ha 0 (zlength array - 1)) as (b & E & H);
      try (unfold zlength; lia). exists b. split; [assumption |]. now rewrite H, element_In.
  - destruct (search_interval_loop_spec (S (length array_sp)) c array_sp lengths Hi 0 (zlength array_sp - 1)) as (b & E & H);
      try (unfold zlength; lia). exists b. split; [assumption |]. rewrite H.
    split; intros (i & Hr & Hc); exists i; (split; [lia | assumption]).
Qed.

(** The tables of White_Space are sorted *)
Lemma white_space_sorted : sorted_array lit_unicode_white_space_chars.
Proof.
  intros i j Hi Hj. change (zlength lit_unicode_white_space_chars) with 5 in Hj.
  assert (Hc : forall k, 0 <= k < 5 -> k = 0 \/ k = 1 \/ k = 2 \/ k = 3 \/ k = 4) by lia.
  destruct (Hc i ltac:(lia)) as [-> | [-> | [-> | [-> | ->]]]], (Hc j ltac:(lia)) as [-> | [-> | [-> | [-> | ->]]]]; vm_compute; (reflexivity || lia).
Qed.

Lemma lit_search_witness :
  (exists b, lit_search_char_in_array 8287 lit_unicode_white_space_chars = Some b /\ (b = true <-> In 8287 lit_unicode_white_space_chars))
  /\ (exists b, lit_search_char_in_interval_array 8287 [8192] [10] = Some b
        /\ (b = true <-> exists i, 0 <= i < 1 /\ element [8192] i <= 8287 <= element [8192] i + element [10] i)).
Proof.
  apply (lit_search_correct 8287 lit_unicode_white_space_chars) with (array_sp := [8192]) (lengths := [10]).
  - apply white_space_sorted.
  - split; [reflexivity |]. split; intros i; [intros j Hi Hj; change (zlength [8192]) with 1 in Hj; lia |].
    intros Hi. change (zlength [8192]) with 1 in Hi. assert (i = 0) as -> by lia. vm_compute. discriminate.
Defined.
