(* ===== verification/LitDigits.v ===== *)
(** * Numbers in buffers: the readers of digits of src/jjs-core/lit/lit-char-helpers.c

    A pointer into a buffer is the rest of the buffer. *)
From Stdlib Require Import ZArith List Lia Bool.
From S2P Require Import Prelude LitChars.
Import ListNotations.
#[local] Open Scope Z_scope.
#[local] Open Scope word_scope.
#[local] Open Scope partial_scope.

Definition UINT32_MAX : Z := 4294967295.

Definition lit_char_hex_to_int (c : Z) : Z :=
  if lit_char_is_decimal_digit c then c - LIT_CHAR_0
  else c mod 32 + (10 - LIT_CHAR_LOWERCASE_A mod 32).

Fixpoint hex_lookup_loop (lookup : nat) (buf : list Z) (value : Z) : option Z :=
  match lookup with
  | O => Some value
  | S lookup =>
      match buf with
      | [] => None
      | ch :: buf =>
          if negb (lit_char_is_hex_digit ch) then Some UINT32_MAX
          else hex_lookup_loop lookup buf ((value <<32 4) +32 lit_char_hex_to_int ch)
      end
  end.

(** The value of the next [lookup] digits, UINT32_MAX when they are no digits *)
Definition lit_char_hex_lookup (buf : list Z) (lookup : nat) : option Z :=
  if zlength buf <? Z.of_nat lookup then Some UINT32_MAX else hex_lookup_loop lookup buf 0.

Fixpoint parse_decimal_loop (current : list Z) (value : Z) : Z * list Z :=
  match current with
  | c :: rest =>
      if lit_char_is_decimal_digit c then
        let digit := c - LIT_CHAR_0 in
        let new_value := u32 (value * 10) +32 digit in
        if (UINT32_MAX / 10 <? value) || (new_value <? value) then parse_decimal_loop rest UINT32_MAX
        else parse_decimal_loop rest new_value
      else (value, current)
  | [] => (value, [])
  end.

(** The value of the digits the buffer starts with, and the rest of the buffer; the
    caller has checked the first digit *)
Definition lit_parse_decimal (buffer : list Z) : option (Z * list Z) :=
  match buffer with
  | [] => None
  | c :: rest => Some (parse_decimal_loop rest (u32 (c - LIT_CHAR_0)))
  end.

(** ** Lemmas *)

Definition is_hex (c : Z) : Prop := lit_char_is_hex_digit c = true.

(** The value of a hexadecimal digit, as the grammar has it *)
Definition hex_value (c : Z) : Z :=
  if c <=? 57 then c - 48 else if c <=? 70 then c - 55 else c - 87.

Lemma hex_cases c : 0 <= c < 256 -> lit_char_is_hex_digit c = ((48 <=? c) && (c <=? 57)) || ((65 <=? c) && (c <=? 70)) || ((97 <=? c) && (c <=? 102))
  /\ (lit_char_is_hex_digit c = true -> lit_char_hex_to_int c = hex_value c /\ 0 <= hex_value c < 16).
Proof.
  intros Hc. assert (H : forallb (fun k => let c := Z.of_nat k in
    Bool.eqb (lit_char_is_hex_digit c) (((48 <=? c) && (c <=? 57)) || ((65 <=? c) && (c <=? 70)) || ((97 <=? c) && (c <=? 102)))
    && (negb (lit_char_is_hex_digit c) || ((lit_char_hex_to_int c =? hex_value c) && (0 <=? hex_value c) && (hex_value c <? 16)))) (seq 0 256) = true) by now vm_compute.
  rewrite forallb_forall in H. specialize (H (Z.to_nat c) ltac:(apply in_seq; lia)). cbv zeta in H. rewrite Z2Nat.id in H by lia.
  apply andb_prop in H as [H1 H2]. split; [now apply Bool.eqb_prop |]. intros E. rewrite E in H2. cbn [negb orb] in H2.
  apply andb_prop in H2 as [H2 H4]. apply andb_prop in H2 as [H2 H3]. apply Z.eqb_eq in H2. apply Z.leb_le in H3. apply Z.ltb_lt in H4. now split.
Qed.

Lemma hex_byte c : is_u8 c -> is_hex c -> c < 128 /\ lit_char_hex_to_int c = hex_value c /\ 0 <= hex_value c < 16.
Proof.
  intros Hc Hh. destruct (hex_cases c Hc) as [E H]. specialize (H Hh). unfold is_hex in Hh. rewrite Hh in E. split; [| exact H].
  symmetry in E. unfold is_u8 in Hc. destruct (Z.leb_spec c 102); [lia |]. rewrite !andb_false_r in E.
  destruct (Z.leb_spec c 57); [lia |]. destruct (Z.leb_spec c 70); [lia |]. rewrite !andb_false_r in E. discriminate E.
Qed.

(** Two digits *)
Lemma hex_lookup_two buf : Forall is_u8 buf ->
  match buf with
  | a :: b :: _ =>
      if lit_char_is_hex_digit a && lit_char_is_hex_digit b then lit_char_hex_lookup buf 2 = Some (hex_value a * 16 + hex_value b)
      else lit_char_hex_lookup buf 2 = Some UINT32_MAX
  | _ => lit_char_hex_lookup buf 2 = Some UINT32_MAX
  end.
Proof.
  intros Hb. destruct buf as [| a [| b buf]]; [reflexivity | reflexivity |]. inversion Hb as [| ? ? Ha Hb']; subst. inversion Hb' as [| ? ? Hb1 _]; subst.
  assert (E : lit_char_hex_lookup (a :: b :: buf) 2 = hex_lookup_loop 2 (a :: b :: buf) 0).
  { unfold lit_char_hex_lookup. rewrite !zlength_cons. pose proof (zlength_nonneg buf). destruct (Z.ltb_spec (1 + (1 + zlength buf)) (Z.of_nat 2)); [lia | reflexivity]. }
  rewrite E. cbn [hex_lookup_loop]. destruct (lit_char_is_hex_digit a) eqn:Ea; cbn [negb andb]; [| reflexivity].
  destruct (lit_char_is_hex_digit b) eqn:Eb; cbn [negb]; [| reflexivity].
  destruct (hex_byte a Ha Ea) as (_ & -> & Hva). destruct (hex_byte b Hb1 Eb) as (_ & -> & Hvb).
  f_equal. rewrite !Z.shiftl_mul_pow2 by lia. rewrite (u32_small (0 * 2 ^ 4)) by (unfold is_u32; lia).
  rewrite (u32_small (0 * 2 ^ 4 + _)) by (unfold is_u32; lia). rewrite (u32_small (_ * 2 ^ 4)) by (unfold is_u32; lia). apply u32_small. unfold is_u32. lia.
Qed.

(** The digits a buffer starts with, and their value *)
Fixpoint leading_digits (buf : list Z) : list Z :=
  match buf with c :: rest => if lit_char_is_decimal_digit c then c :: leading_digits rest else [] | [] => [] end.

Definition decimal_number (digits : list Z) : Z := fold_left (fun value c => value * 10 + (c - LIT_CHAR_0)) digits 0.

Lemma decimal_digit_range c : lit_char_is_decimal_digit c = true -> 0 <= c - LIT_CHAR_0 <= 9.
Proof. unfold lit_char_is_decimal_digit, LIT_CHAR_0, LIT_CHAR_9. intros H. apply andb_prop in H as [H1 H2]. apply Z.leb_le in H1, H2. lia. Qed.

Lemma parse_decimal_loop_spec buf : forall value, 0 <= value ->
  parse_decimal_loop buf (Z.min value UINT32_MAX)
  = (Z.min (fold_left (fun value c => value * 10 + (c - LIT_CHAR_0)) (leading_digits buf) value) UINT32_MAX, skipn (length (leading_digits buf)) buf).
Proof.
  induction buf as [| c buf IH]; intros value Hv; cbn [parse_decimal_loop leading_digits]; [reflexivity |].
  destruct (lit_char_is_decimal_digit c) eqn:E; [| reflexivity]. apply decimal_digit_range in E. cbn [fold_left length skipn].
  rewrite <- IH by lia. set (d := c - LIT_CHAR_0) in *. unfold UINT32_MAX in *. change (4294967295 / 10) with 429496729.
  destruct (Z.ltb_spec 429496729 (Z.min value 4294967295)) as [H | H]; cbn [orb]; [rewrite Z.min_r by lia; reflexivity |].
  assert (value <= 429496729) by lia. rewrite (Z.min_l value) by lia.
  destruct (Z.leb_spec (value * 10 + d) 4294967295) as [Hs | Hs].
  - rewrite (u32_small (value * 10)), u32_small by (unfold is_u32; lia). destruct (Z.ltb_spec (value * 10 + d) value); [lia |]. now rewrite Z.min_l by lia.
  - rewrite (u32_small (value * 10)) by (unfold is_u32; lia). assert (E2 : value * 10 +32 d = value * 10 + d - B32) by (unfold u32; Z.div_mod_to_equations; lia).
    rewrite E2. destruct (Z.ltb_spec (value * 10 + d - B32) value); [| lia]. now rewrite Z.min_r by lia.
Qed.

(** ** Properties *)

(** Numbers in source text: lit_parse_decimal reads all leading digits, returns
    their value clamped to UINT32_MAX however many digits there are, and leaves the
    rest of the buffer; lit_char_hex_lookup returns the value of two hexadecimal
    digits, and UINT32_MAX for any other two bytes and at the end of the buffer. *)
Theorem lit_digits_correct c buf : lit_char_is_decimal_digit c = true -> Forall is_u8 buf ->
  lit_parse_decimal (c :: buf) = Some (Z.min (decimal_number (leading_digits (c :: buf))) UINT32_MAX, skipn (length (leading_digits (c :: buf))) (c :: buf))
  /\ lit_char_hex_lookup buf 2 = Some (match buf with
                                       | a :: b :: _ => if lit_char_is_hex_digit a && lit_char_is_hex_digit b then hex_value a * 16 + hex_value b else UINT32_MAX
                                       | _ => UINT32_MAX
                                       end).
Proof.
  intros Hc Hb. split.
  - pose proof (decimal_digit_range c Hc) as Hd. unfold lit_parse_decimal, decimal_number. cbn [leading_digits]. rewrite Hc. cbn [fold_left length skipn].
    rewrite u32_small by (unfold is_u32; lia). f_equal. rewrite <- (parse_decimal_loop_spec buf (0 * 10 + (c - LIT_CHAR_0))) by lia. f_equal. unfold UINT32_MAX. lia.
  - pose proof (hex_lookup_two buf Hb) as H. destruct buf as [| x [| y buf]]; try exact H. now destruct (_ && _).
Qed.

(** "4294967296;" is clamped, "fF" is 255 *)
Lemma lit_digits_witness :
  lit_parse_decimal [52; 50; 57; 52; 57; 54; 55; 50; 57; 54; 59] = Some (4294967295, [59]) /\ lit_char_hex_lookup [102; 70] 2 = Some 255.
Proof.
  destruct (lit_digits_correct 52 [50; 57; 52; 57; 54; 55; 50; 57; 54; 59] eq_refl) as [E _]; [repeat (constructor; [unfold is_u8; lia |]); constructor |].
  destruct (lit_digits_correct 52 [102; 70] eq_refl) as [_ E2]; [repeat (constructor; [unfold is_u8; lia |]); constructor |].
  split; [exact E | exact E2].
Defined.
