(* ===== verification/BigUint.v ===== *)
(** * Unsigned big integers: src/jjs-core/ecma/operations/ecma-big-uint.c

    The magnitude arithmetic of BigInt values: a little-endian sequence of
    32-bit digits behind an [ecma_extended_primitive_t] header.  This file holds
    the data, the allocation helpers, comparison, the in-place digit operations
    and addition, subtraction, multiplication; shifts and bitwise operations
    are in BigUintBits, division in BigUintDiv, printing in BigUintString.

    A pointer walk over a digit buffer is a recursion over the digit list; a
    digit buffer that the C code allocates and then fills is a list built by
    the loop.  Allocation goes through [HeapIface], so every NULL path of the
    code is a branch here, and the theorems also account for the bytes held. *)
From Stdlib Require Import ZArith List Lia Bool.
From S2P Require Import Prelude HeapIface.
Import ListNotations.
#[local] Open Scope Z_scope.
#[local] Open Scope heap_scope.

(** ** Constants and data *)

Definition ECMA_BIGINT_MAX_SIZE : Z := 65536.
Definition ECMA_EXTENDED_PRIMITIVE_REF_ONE : Z := 8.
Definition ECMA_TYPE_BIGINT : Z := 6.
(** ~((ecma_bigint_digit_t) 0) *)
Definition DIGIT_MAX : Z := 4294967295.
(** sizeof (ecma_bigint_digit_t), sizeof (ecma_extended_primitive_t) *)
Abbreviation sizeof_digit := 4 (only parsing).
Abbreviation sizeof_primitive := 8 (only parsing).

(** [refs_and_type] and [u.bigint_sign_and_size] of ecma_extended_primitive_t,
    followed by the digits stored behind the header. *)
Record ecma_extended_primitive_t := mk_primitive {
  refs_and_type : Z;
  bigint_sign_and_size : Z;
  bigint_digits : list Z
}.

(** Result pointers: NULL, ECMA_BIGINT_POINTER_TO_ZERO, or a primitive. *)
Inductive bigint_ptr :=
| BIGINT_NULL
| BIGINT_POINTER_TO_ZERO
| BIGINT_PTR (value_p : ecma_extended_primitive_t).

Definition ECMA_BIGINT_GET_SIZE (v : ecma_extended_primitive_t) : Z :=
  Z.land (bigint_sign_and_size v) 4294967292.

Definition ECMA_BIGINT_GET_BYTE_SIZE (size : Z) : Z :=
  Z.land (size + sizeof_digit) (Z.lnot (2 * sizeof_digit - 1)).

Definition ECMA_BIGINT_SIZE_IS_ODD (size : Z) : bool :=
  negb (Z.land size sizeof_digit =? 0).

(** ECMA_BIGINT_GET_LAST_DIGIT (value_p, size) with size the size of value_p *)
Definition ECMA_BIGINT_GET_LAST_DIGIT (v : ecma_extended_primitive_t) : Z :=
  last (bigint_digits v) 0.

Definition ECMA_BIGINT_NUMBER_IS_ODD (number : Z) : bool := negb (Z.land number 1 =? 0).

(** Store digits into a freshly created primitive. *)
Definition set_digits (v : ecma_extended_primitive_t) (ds : list Z) : ecma_extended_primitive_t :=
  mk_primitive (refs_and_type v) (bigint_sign_and_size v) ds.

(** [size] in bytes of a run of digits *)
Definition digits_size (ds : list Z) : Z := sizeof_digit * zlength ds.

Section BigUint.
Context {HA : HeapAlloc}.

Definition ecma_bigint_create (size : Z) : M (option ecma_extended_primitive_t) :=
  if ECMA_BIGINT_MAX_SIZE <? size then ret None
  else
    ok <- jmem_heap_alloc_block_null_on_error
            (ECMA_BIGINT_GET_BYTE_SIZE size + sizeof_primitive);;
    ret (if ok : bool
         then Some (mk_primitive
                      (Z.lor ECMA_EXTENDED_PRIMITIVE_REF_ONE ECMA_TYPE_BIGINT) size [])
         else None).

(** [None] when the last reference is gone, else the object as it is left. *)
Definition ecma_deref_bigint (v : ecma_extended_primitive_t) : M (option ecma_extended_primitive_t) :=
  let v := mk_primitive (u32 (refs_and_type v - ECMA_EXTENDED_PRIMITIVE_REF_ONE))
             (bigint_sign_and_size v) (bigint_digits v) in
  if ECMA_EXTENDED_PRIMITIVE_REF_ONE <=? refs_and_type v then ret (Some v)
  else
    jmem_heap_free_block
      (ECMA_BIGINT_GET_BYTE_SIZE (ECMA_BIGINT_GET_SIZE v) + sizeof_primitive);;;
    ret None.

Definition ecma_big_uint_extend (v : ecma_extended_primitive_t) (digit : Z) : M bigint_ptr :=
  let old_size := ECMA_BIGINT_GET_SIZE v in
  if ECMA_BIGINT_SIZE_IS_ODD old_size then
    ret (BIGINT_PTR (mk_primitive (refs_and_type v)
                       (u32 (bigint_sign_and_size v + sizeof_digit))
                       (bigint_digits v ++ [digit])))
  else
    result_p <- ecma_bigint_create (u32 (old_size + sizeof_digit));;
    match result_p with
    | None => ecma_deref_bigint v;;; ret BIGINT_NULL
    | Some r =>
        ecma_deref_bigint v;;;
        ret (BIGINT_PTR (set_digits r (bigint_digits v ++ [digit])))
    end.

(** ecma_big_uint_normalize_result: the loop that walks back over zero digits
    (its sentinel, the size field before the digits, is the empty list). *)
Fixpoint skip_zero_digits (rev_digits : list Z) : list Z :=
  match rev_digits with
  | d :: rest => if d =? 0 then skip_zero_digits rest else rev_digits
  | [] => []
  end.

Definition ecma_big_uint_normalize_result (v : ecma_extended_primitive_t) : M bigint_ptr :=
  match rev (skip_zero_digits (rev (bigint_digits v))) with
  | [] => ecma_deref_bigint v;;; ret BIGINT_POINTER_TO_ZERO
  | kept =>
      let new_size := digits_size kept in
      if ECMA_BIGINT_SIZE_IS_ODD new_size
         && (new_size + sizeof_digit =? ECMA_BIGINT_GET_SIZE v)
      then ret (BIGINT_PTR (mk_primitive (refs_and_type v)
                              (u32 (bigint_sign_and_size v - sizeof_digit)) kept))
      else
        result_p <- ecma_bigint_create new_size;;
        match result_p with
        | None => ecma_deref_bigint v;;; ret BIGINT_NULL
        | Some r => ecma_deref_bigint v;;; ret (BIGINT_PTR (set_digits r kept))
        end
  end.

(** Add one to a run of digits; the flag tells that the carry left the run. *)
Fixpoint increase_digits (ds : list Z) : list Z * bool :=
  match ds with
  | [] => ([], true)
  | d :: rest =>
      if d =? DIGIT_MAX then let (rest', carry) := increase_digits rest in (0 :: rest', carry)
      else (u32 (d + 1) :: rest, false)
  end.

Definition ecma_big_uint_increase_result (v : ecma_extended_primitive_t) : M bigint_ptr :=
  let (ds, carry) := increase_digits (bigint_digits v) in
  let v' := set_digits v ds in
  if carry : bool then ecma_big_uint_extend v' 1
  else if negb (last ds 0 =? 0) then ret (BIGINT_PTR v')
  else ecma_big_uint_normalize_result v'.
End BigUint.

Fixpoint count_leading_zero_loop (fuel : nat) (digit shift result : Z) : Z :=
  match fuel with
  | O => u32 (result - digit)
  | S fuel' =>
      let value := Z.shiftr digit shift in
      let digit' := if 0 <? value then value else digit in
      let result' := if 0 <? value then u32 (result - shift) else result in
      let shift' := Z.shiftr shift 1 in
      if 0 <? shift' then count_leading_zero_loop fuel' digit' shift' result'
      else u32 (result' - digit')
  end.

(** The shift starts at 16 and halves, so the body runs five times. *)
Definition ecma_big_uint_count_leading_zero (digit : Z) : Z :=
  count_leading_zero_loop 5 digit (4 * sizeof_digit) (8 * sizeof_digit).

(** The loop of ecma_big_uint_compare, from the most significant digit. *)
Fixpoint compare_digits (rev_left rev_right : list Z) : Z :=
  match rev_left, rev_right with
  | l :: ls, r :: rs => if l <? r then -1 else if r <? l then 1 else compare_digits ls rs
  | _, _ => 0
  end.

Definition ecma_big_uint_compare (left right : ecma_extended_primitive_t) : Z :=
  let left_size := ECMA_BIGINT_GET_SIZE left in
  let right_size := ECMA_BIGINT_GET_SIZE right in
  if right_size <? left_size then 1
  else if left_size <? right_size then -1
  else compare_digits (rev (bigint_digits left)) (rev (bigint_digits right)).

(** ecma_big_uint_mul_digit: one digit of value * mul + carry *)
Definition mul_digit_step (d mul carry : Z) : Z * Z :=
  let multiply_result := u64 (d * mul) in
  let low := u32 multiply_result in
  let new_carry := u32 (Z.shiftr multiply_result 32) in
  let low := u32 (low + carry) in
  (low, if low <? carry then u32 (new_carry + 1) else new_carry).

Fixpoint mul_digit_loop (ds : list Z) (mul carry : Z) : list Z * Z :=
  match ds with
  | [] => ([], carry)
  | d :: rest =>
      let (low, carry') := mul_digit_step d mul carry in
      let (rest', carry'') := mul_digit_loop rest mul carry' in
      (low :: rest', carry'')
  end.

(** One digit of an addition (ecma_big_uint_add, and step D6 of the division) *)
Definition add_digit_step (left right carry : Z) : Z * Z :=
  let '(sum, carry) :=
    if (carry =? 0) || negb (left =? DIGIT_MAX) then (u32 (left + carry), 0) else (0, 1) in
  let sum := u32 (sum + right) in
  (sum, if sum <? right then 1 else carry).

(** The digits of right are consumed; the last component is what is left of left. *)
Fixpoint add_loop (left right : list Z) (carry : Z) {struct right} : list Z * Z * list Z :=
  match right, left with
  | r :: right', l :: left' =>
      let (d, carry') := add_digit_step l r carry in
      let '(ds, carry'', rest) := add_loop left' right' carry' in
      (d :: ds, carry'', rest)
  | _, _ => ([], carry, left)
  end.

(** One digit of a subtraction *)
Definition sub_digit_step (left right carry : Z) : Z * Z :=
  let '(rest, carry) :=
    if (carry =? 0) || negb (left =? 0)
    then let left' := u32 (left - carry) in (left', if left' <? right then 1 else 0)
    else (DIGIT_MAX, 1) in
  (u32 (rest - right), carry).

Fixpoint sub_loop (left right : list Z) (carry : Z) {struct right} : list Z * Z * list Z :=
  match right, left with
  | r :: right', l :: left' =>
      let (d, carry') := sub_digit_step l r carry in
      let '(ds, carry'', rest) := sub_loop left' right' carry' in
      (d :: ds, carry'', rest)
  | _, _ => ([], carry, left)
  end.

(** Subtract one from a run of digits: the digits written, and the digits that
    the borrow did not reach. *)
Fixpoint decrease_digits (ds : list Z) : list Z * list Z :=
  match ds with
  | [] => ([], [])
  | d :: rest =>
      if d =? 0 then let (done, rest') := decrease_digits rest in (DIGIT_MAX :: done, rest')
      else ([u32 (d - 1)], rest)
  end.

(** One digit of a row of the schoolbook multiplication *)
Definition mul_step (value left right carry : Z) : Z * Z :=
  let multiply_result := u64 (left * right) in
  let low := u32 multiply_result in
  let value := u32 (value + low) in
  let new_carry := u32 (Z.shiftr multiply_result 32) in
  let new_carry := if value <? low then u32 (new_carry + 1) else new_carry in
  let value := u32 (value + carry) in
  let new_carry := if value <? carry then u32 (new_carry + 1) else new_carry in
  (value, new_carry).

(** The trailing while (carry > 0) loop of a row *)
Fixpoint mul_carry_loop (destination : list Z) (carry : Z) : list Z :=
  if carry =? 0 then destination
  else match destination with
       | [] => []
       | value :: rest =>
           let value' := u32 (value + carry) in
           value' :: mul_carry_loop rest (if value' <? carry then 1 else 0)
       end.

Fixpoint mul_row (left : list Z) (right carry : Z) (destination : list Z) : list Z :=
  match left, destination with
  | l :: left', value :: rest =>
      let (value', carry') := mul_step value l right carry in
      value' :: mul_row left' right carry' rest
  | _, _ => mul_carry_loop destination carry
  end.

(** The outer loop; [destination] is what lies at and above result_start_p, the
    extra_space digit following the last digit of the result. *)
Fixpoint mul_rows (left right destination : list Z) : list Z :=
  match right with
  | [] => destination
  | r :: right' =>
      match (if r =? 0 then destination else mul_row left r 0 destination) with
      | [] => []
      | d :: rest => d :: mul_rows left right' rest
      end
  end.

Section BigUintOps.
Context {HA : HeapAlloc}.

Definition ecma_big_uint_mul_digit (value_p : option ecma_extended_primitive_t)
    (mul add : Z) : M bigint_ptr :=
  match value_p with
  | None =>
      r <- ecma_bigint_create sizeof_digit;;
      match r with
      | None => ret BIGINT_NULL
      | Some r => ret (BIGINT_PTR (set_digits r [add]))
      end
  | Some v =>
      let (ds, carry) := mul_digit_loop (bigint_digits v) mul add in
      let v' := set_digits v ds in
      if carry =? 0 then ret (BIGINT_PTR v') else ecma_big_uint_extend v' carry
  end.

Definition ecma_big_uint_increase (v : ecma_extended_primitive_t) : M bigint_ptr :=
  let size := ECMA_BIGINT_GET_SIZE v in
  let ds := bigint_digits v in
  if (hd 0 ds =? DIGIT_MAX) && (last ds 0 =? DIGIT_MAX)
     && forallb (fun d => d =? DIGIT_MAX) (tl ds)
  then
    r <- ecma_bigint_create (u32 (size + sizeof_digit));;
    match r with
    | None => ret BIGINT_NULL
    | Some r => ret (BIGINT_PTR (set_digits r (map (fun _ => 0) ds ++ [1])))
    end
  else
    r <- ecma_bigint_create size;;
    match r with
    | None => ret BIGINT_NULL
    | Some r => ret (BIGINT_PTR (set_digits r (fst (increase_digits ds))))
    end.

Definition ecma_big_uint_decrease (v : ecma_extended_primitive_t) : M bigint_ptr :=
  let size := ECMA_BIGINT_GET_SIZE v in
  let ds := bigint_digits v in
  if (hd 0 ds =? 0) && (last ds 0 =? 1)
     && forallb (fun d => d =? 0) (removelast (tl ds))
  then
    let size := u32 (size - sizeof_digit) in
    r <- ecma_bigint_create size;;
    match r with
    | None => ret BIGINT_NULL
    | Some r => ret (BIGINT_PTR (set_digits r (map (fun _ => DIGIT_MAX) (removelast ds))))
    end
  else
    r <- ecma_bigint_create size;;
    match r with
    | None => ret BIGINT_NULL
    | Some r =>
        let (done, rest) := decrease_digits ds in
        ret (BIGINT_PTR (set_digits r (done ++ rest)))
    end.

Definition ecma_big_uint_add (left right : ecma_extended_primitive_t) : M bigint_ptr :=
  let '(lhs, rhs) :=
    if ECMA_BIGINT_GET_SIZE left <? ECMA_BIGINT_GET_SIZE right
    then (right, left) else (left, right) in
  r <- ecma_bigint_create (ECMA_BIGINT_GET_SIZE lhs);;
  match r with
  | None => ret BIGINT_NULL
  | Some r =>
      let '(ds, carry, rest) := add_loop (bigint_digits lhs) (bigint_digits rhs) 0 in
      if negb (carry =? 0) then
        let (rest', overflow) := increase_digits rest in
        let r' := set_digits r (ds ++ rest') in
        if overflow : bool then ecma_big_uint_extend r' 1 else ret (BIGINT_PTR r')
      else ret (BIGINT_PTR (set_digits r (ds ++ rest)))
  end.

Definition ecma_big_uint_sub (left right : ecma_extended_primitive_t) : M bigint_ptr :=
  r <- ecma_bigint_create (ECMA_BIGINT_GET_SIZE left);;
  match r with
  | None => ret BIGINT_NULL
  | Some r =>
      let '(ds, carry, rest) := sub_loop (bigint_digits left) (bigint_digits right) 0 in
      let '(done, rest) :=
        if negb (carry =? 0) then decrease_digits rest else ([], rest) in
      let written := ds ++ done in
      match rest with
      | _ :: _ => ret (BIGINT_PTR (set_digits r (written ++ rest)))
      | [] =>
          if negb (last written 0 =? 0) then ret (BIGINT_PTR (set_digits r written))
          else ecma_big_uint_normalize_result (set_digits r written)
      end
  end.

Definition ecma_big_uint_mul (left right : ecma_extended_primitive_t) : M bigint_ptr :=
  let '(lhs, rhs) :=
    if ECMA_BIGINT_GET_SIZE left <? ECMA_BIGINT_GET_SIZE right
    then (right, left) else (left, right) in
  let result_size :=
    u32 (ECMA_BIGINT_GET_SIZE lhs + ECMA_BIGINT_GET_SIZE rhs - sizeof_digit) in
  r <- ecma_bigint_create result_size;;
  match r with
  | None => ret BIGINT_NULL
  | Some r =>
      (* result digits, then extra_space[0] *)
      let buffer := repeat 0 (Z.to_nat (result_size / sizeof_digit)) ++ [0] in
      let buffer := mul_rows (bigint_digits lhs) (bigint_digits rhs) buffer in
      let extra_space := last buffer 0 in
      let r' := set_digits r (removelast buffer) in
      if extra_space =? 0 then ret (BIGINT_PTR r') else ecma_big_uint_extend r' extra_space
  end.
End BigUintOps.

(** ** What the digits mean *)

Fixpoint digits_value (ds : list Z) : Z :=
  match ds with
  | [] => 0
  | d :: rest => d + B32 * digits_value rest
  end.

Definition digits_ok (ds : list Z) : Prop := Forall is_u32 ds.

Definition big_uint_value (v : ecma_extended_primitive_t) : Z := digits_value (bigint_digits v).

(** Well-formed magnitude: whole digits, no leading zero digit, in the size
    limit, and a size field that agrees with the digits (bit 0 is the sign). *)
Record big_uint_wf (v : ecma_extended_primitive_t) : Prop := {
  wf_size : ECMA_BIGINT_GET_SIZE v = digits_size (bigint_digits v);
  wf_digits : digits_ok (bigint_digits v);
  wf_last : last (bigint_digits v) 0 <> 0;
  wf_max : digits_size (bigint_digits v) <= ECMA_BIGINT_MAX_SIZE
}.

(** A result the caller owns: one reference, no sign bit *)
Definition big_uint_fresh (v : ecma_extended_primitive_t) : Prop :=
  refs_and_type v = Z.lor ECMA_EXTENDED_PRIMITIVE_REF_ONE ECMA_TYPE_BIGINT
  /\ bigint_sign_and_size v = digits_size (bigint_digits v).

(** Bytes of heap a value with these digits occupies *)
Definition primitive_bytes (ds : list Z) : Z :=
  ECMA_BIGINT_GET_BYTE_SIZE (digits_size ds) + sizeof_primitive.

(** The numbers that do not fit in ECMA_BIGINT_MAX_SIZE bytes of digits *)
Definition ECMA_BIGINT_MAX_DIGITS : Z := ECMA_BIGINT_MAX_SIZE / sizeof_digit.

Definition big_uint_too_large (x : Z) : Prop := B32 ^ ECMA_BIGINT_MAX_DIGITS <= x.

Section Specification.
Context {HA : HeapAlloc}.

(** [big_uint_result x res held]: the outcome [res] of an operation whose
    mathematical result is [x], holding [held] more bytes than before.  A
    NULL result retains nothing, and with an ample heap it means that [x]
    exceeds the size limit. *)
Definition big_uint_result (x : Z) (res : bigint_ptr) (held : Z) : Prop :=
  match res with
  | BIGINT_NULL => held = 0 /\ (heap_ample -> big_uint_too_large x)
  | BIGINT_POINTER_TO_ZERO => x = 0 /\ held = 0
  | BIGINT_PTR v =>
      big_uint_value v = x /\ big_uint_wf v /\ big_uint_fresh v
      /\ held = primitive_bytes (bigint_digits v)
  end.
End Specification.

(** ** Digit sequences *)

Lemma pow32_pos (n : Z) : 0 <= n -> 0 < B32 ^ n.
Proof. intros. apply Z.pow_pos_nonneg; lia. Qed.

Lemma pow32_succ (n : Z) : 0 <= n -> B32 ^ (1 + n) = B32 * B32 ^ n.
Proof. intros. rewrite Z.pow_add_r by lia. reflexivity. Qed.

Lemma digits_value_app a b :
  digits_value (a ++ b) = digits_value a + B32 ^ zlength a * digits_value b.
Proof.
  induction a as [|x a IH]; cbn [digits_value app].
  - rewrite (@zlength_nil Z), Z.pow_0_r. lia.
  - rewrite IH, zlength_cons, pow32_succ by apply zlength_nonneg. ring.
Qed.

Lemma digits_value_bound ds : digits_ok ds -> 0 <= digits_value ds < B32 ^ zlength ds.
Proof.
  induction 1 as [|d ds Hd Hds IH]; cbn [digits_value].
  - rewrite (@zlength_nil Z), Z.pow_0_r. lia.
  - rewrite zlength_cons, pow32_succ by apply zlength_nonneg. unfold is_u32 in Hd. lia.
Qed.

Lemma last_nonzero_nonempty ds : last ds 0 <> 0 -> ds <> [].
Proof. now intros H ->. Qed.

Lemma digits_value_snoc ds d :
  digits_value (ds ++ [d]) = digits_value ds + B32 ^ zlength ds * d.
Proof. rewrite digits_value_app. cbn [digits_value]. now rewrite Z.mul_0_r, Z.add_0_r. Qed.

Lemma digits_ok_snoc ds d : digits_ok (ds ++ [d]) -> digits_ok ds /\ is_u32 d.
Proof. intros [H1 H2]%Forall_app. now inversion H2. Qed.

Lemma zlength_snoc {A} (l : list A) x : zlength (l ++ [x]) = zlength l + 1.
Proof. now rewrite zlength_app. Qed.

(** View a non-empty run as its lower digits and its most significant digit. *)
Ltac snoc_view ds l x Hne := destruct (exists_last Hne) as (l & x & ->).

Lemma digits_value_lower ds :
  digits_ok ds -> last ds 0 <> 0 -> B32 ^ (zlength ds - 1) <= digits_value ds.
Proof.
  intros Hok Hl. snoc_view ds l x (last_nonzero_nonempty ds Hl).
  rewrite last_last in Hl. apply digits_ok_snoc in Hok as [Hok Hx].
  rewrite digits_value_snoc, zlength_snoc, Z.add_simpl_r.
  pose proof (pow32_pos _ (zlength_nonneg l)). pose proof (digits_value_bound _ Hok).
  unfold is_u32 in *. nia.
Qed.

(** The last digit of a run is non-zero when the value needs the whole run. *)
Lemma last_nonzero ds :
  digits_ok ds -> ds <> [] -> B32 ^ (zlength ds - 1) <= digits_value ds -> last ds 0 <> 0.
Proof.
  intros Hok Hne Hv. snoc_view ds l x Hne.
  rewrite last_last. intros ->. apply digits_ok_snoc in Hok as [Hok _].
  rewrite digits_value_snoc, zlength_snoc, Z.add_simpl_r in Hv.
  pose proof (digits_value_bound _ Hok). lia.
Qed.

Lemma zlength_pos {A} (l : list A) : l <> [] -> 0 < zlength l.
Proof. destruct l; [easy | rewrite zlength_cons; pose proof (zlength_nonneg l); lia]. Qed.

Lemma digits_value_pos ds : digits_ok ds -> last ds 0 <> 0 -> 0 < digits_value ds.
Proof.
  intros Hok Hl. pose proof (digits_value_lower ds Hok Hl).
  pose proof (zlength_pos ds (last_nonzero_nonempty _ Hl)).
  pose proof (pow32_pos (zlength ds - 1)). lia.
Qed.

(** ** One digit at a time *)

Ltac word_bounds :=
  unfold is_u8, is_u16, is_u32, is_u64, DIGIT_MAX in *.

Lemma u32_split z : z = u32 z + B32 * (z / B32).
Proof. unfold u32. pose proof (Z.div_mod z B32). lia. Qed.

Lemma mul_digits_bound d m :
  is_u32 d -> is_u32 m -> 0 <= d * m <= 18446744065119617025.
Proof. word_bounds; intros; nia. Qed.

Lemma two_digit_low_high p :
  0 <= p <= 18446744065119617025 ->
  exists low high, u32 (u64 p) = low /\ u32 (Z.shiftr (u64 p) 32) = high
    /\ low + B32 * high = p /\ is_u32 low /\ is_u32 high /\ high <= 4294967294
    /\ (high = 4294967294 -> low <= 1).
Proof.
  intros Hp. unfold u64. rewrite (Z.mod_small p) by lia.
  rewrite Z.shiftr_div_pow2 by lia. change (2 ^ 32) with B32. unfold u32.
  exists (p mod B32), (p / B32).
  pose proof (Z.div_mod p B32 ltac:(lia)). pose proof (Z.mod_pos_bound p B32 ltac:(lia)).
  rewrite (Z.mod_small (p / B32)) by lia.
  unfold is_u32. lia.
Qed.

Lemma mul_digit_step_spec d mul carry low carry' :
  is_u32 d -> is_u32 mul -> is_u32 carry ->
  mul_digit_step d mul carry = (low, carry') ->
  low + B32 * carry' = d * mul + carry /\ is_u32 low /\ is_u32 carry'.
Proof.
  intros Hd Hm Hc. unfold mul_digit_step.
  pose proof (mul_digits_bound d mul Hd Hm) as Hp.
  destruct (two_digit_low_high _ Hp) as (l & h & -> & -> & E & Hl & Hh & Hx & Hy).
  set (p := d * mul) in *. clearbody p.
  word_cases; intro_pair; word_bounds; lia.
Qed.

Lemma add_digit_step_spec l r carry d carry' :
  is_u32 l -> is_u32 r -> 0 <= carry <= 1 ->
  add_digit_step l r carry = (d, carry') ->
  d + B32 * carry' = l + r + carry /\ is_u32 d /\ 0 <= carry' <= 1.
Proof.
  intros Hl Hr Hc. unfold add_digit_step, DIGIT_MAX.
  destruct (Z.eqb_spec carry 0), (Z.eqb_spec l 4294967295); cbv beta iota zeta delta [negb orb];
    word_cases; intro_pair; word_bounds; lia.
Qed.

Lemma sub_digit_step_spec l r carry d carry' :
  is_u32 l -> is_u32 r -> 0 <= carry <= 1 ->
  sub_digit_step l r carry = (d, carry') ->
  d - B32 * carry' = l - r - carry /\ is_u32 d /\ 0 <= carry' <= 1.
Proof.
  intros Hl Hr Hc. unfold sub_digit_step, DIGIT_MAX.
  destruct (Z.eqb_spec carry 0), (Z.eqb_spec l 0); cbv beta iota zeta delta [negb orb];
    word_cases; intro_pair; word_bounds; lia.
Qed.

Lemma mul_step_spec v l r carry v' carry' :
  is_u32 v -> is_u32 l -> is_u32 r -> is_u32 carry ->
  mul_step v l r carry = (v', carry') ->
  v' + B32 * carry' = v + l * r + carry /\ is_u32 v' /\ is_u32 carry'.
Proof.
  intros Hv Hl Hr Hc. unfold mul_step.
  pose proof (mul_digits_bound l r Hl Hr) as Hp.
  destruct (two_digit_low_high _ Hp) as (lo & h & -> & -> & E & Hlo & Hh & Hx & Hy).
  set (p := l * r) in *. clearbody p.
  word_cases; intro_pair; word_bounds; lia.
Qed.

(** ** Runs of digits *)

Lemma skip_zero_value rds :
  digits_value (rev (skip_zero_digits rds)) = digits_value (rev rds).
Proof.
  induction rds as [|d rds IH]; [reflexivity | cbn [skip_zero_digits]].
  destruct (Z.eqb_spec d 0) as [-> |]; [| reflexivity].
  cbn [rev]. rewrite digits_value_snoc, IH. lia.
Qed.

Lemma skip_zero_head rds : hd 0 (skip_zero_digits rds) = 0 -> skip_zero_digits rds = [].
Proof.
  induction rds as [|d rds IH]; [reflexivity | cbn [skip_zero_digits]].
  destruct (Z.eqb_spec d 0) as [-> |Hd]; [assumption | easy].
Qed.

Lemma skip_zero_suffix rds : exists zs, rds = zs ++ skip_zero_digits rds.
Proof.
  induction rds as [|d rds [zs IH]]; [now exists [] | cbn [skip_zero_digits]].
  destruct (d =? 0); [exists (d :: zs); cbn; congruence | now exists []].
Qed.

Lemma last_hd_rev (l : list Z) : last l 0 = hd 0 (rev l).
Proof.
  destruct l as [|x l] using rev_ind; [reflexivity |].
  now rewrite last_last, rev_app_distr.
Qed.

Lemma mul_digit_loop_spec ds mul : is_u32 mul -> digits_ok ds -> forall carry ds' carry',
  is_u32 carry -> mul_digit_loop ds mul carry = (ds', carry') ->
  digits_value ds' + B32 ^ zlength ds * carry' = digits_value ds * mul + carry
  /\ digits_ok ds' /\ is_u32 carry' /\ zlength ds' = zlength ds.
Proof.
  intros Hm Hok. induction Hok as [|d ds Hd Hok IH]; intros carry ds' carry' Hc; cbn [mul_digit_loop].
  - intro_pair. splits; [| constructor | assumption | reflexivity].
    rewrite (@zlength_nil Z), Z.pow_0_r. cbn [digits_value]. lia.
  - destruct (mul_digit_step d mul carry) as [low c1] eqn:E1.
    destruct (mul_digit_loop ds mul c1) as [rest c2] eqn:E2. intro_pair.
    apply mul_digit_step_spec in E1 as (V1 & Hl & Hc1); try assumption.
    apply IH in E2 as (V2 & Hok2 & Hc2 & L); [| assumption].
    rewrite !zlength_cons, pow32_succ by apply zlength_nonneg. cbn [digits_value].
    splits; [lia | now constructor | assumption | lia].
Qed.

Lemma add_loop_spec right : digits_ok right -> forall left carry ds carry' rest,
  digits_ok left -> zlength right <= zlength left -> 0 <= carry <= 1 ->
  add_loop left right carry = (ds, carry', rest) ->
  digits_value ds + B32 ^ zlength right * (carry' + digits_value rest)
    = digits_value left + digits_value right + carry
  /\ digits_ok ds /\ 0 <= carry' <= 1 /\ zlength ds = zlength right
  /\ exists pre, left = pre ++ rest /\ zlength pre = zlength right.
Proof.
  induction 1 as [|r right Hr Hok IH]; intros left carry ds carry' rest Hl Hlen Hc; cbn [add_loop].
  - intro_triple. splits; try lia; try now constructor.
    + rewrite (@zlength_nil Z), Z.pow_0_r. cbn [digits_value]. lia.
    + exists []. auto.
  - rewrite zlength_cons in Hlen. destruct left as [|l left]; [|inversion_clear Hl as [|? ? Hl0 Hlok]].
    { rewrite (@zlength_nil Z) in Hlen. pose proof (zlength_nonneg right). lia. }
    rewrite zlength_cons in Hlen.
    destruct (add_digit_step l r carry) as [d c1] eqn:E1.
    destruct (add_loop left right c1) as [[ds2 c2] rest2] eqn:E2. intro_triple.
    apply add_digit_step_spec in E1 as (V1 & Hd & Hc1); try assumption.
    apply IH in E2 as (V2 & Hok2 & Hc2 & L & pre & -> & Lp); try assumption; [| lia].
    rewrite !zlength_cons, pow32_succ by apply zlength_nonneg. cbn [digits_value].
    splits; [lia | now constructor | lia | lia | lia |].
    exists (l :: pre). rewrite zlength_cons. split; [reflexivity | lia].
Qed.

Lemma sub_loop_spec right : digits_ok right -> forall left carry ds carry' rest,
  digits_ok left -> zlength right <= zlength left -> 0 <= carry <= 1 ->
  sub_loop left right carry = (ds, carry', rest) ->
  digits_value ds + B32 ^ zlength right * (digits_value rest - carry')
    = digits_value left - digits_value right - carry
  /\ digits_ok ds /\ 0 <= carry' <= 1 /\ zlength ds = zlength right
  /\ exists pre, left = pre ++ rest /\ zlength pre = zlength right.
Proof.
  induction 1 as [|r right Hr Hok IH]; intros left carry ds carry' rest Hl Hlen Hc; cbn [sub_loop].
  - intro_triple. splits; try lia; try now constructor.
    + rewrite (@zlength_nil Z), Z.pow_0_r. cbn [digits_value]. lia.
    + exists []. auto.
  - rewrite zlength_cons in Hlen. destruct left as [|l left]; [|inversion_clear Hl as [|? ? Hl0 Hlok]].
    { rewrite (@zlength_nil Z) in Hlen. pose proof (zlength_nonneg right). lia. }
    rewrite zlength_cons in Hlen.
    destruct (sub_digit_step l r carry) as [d c1] eqn:E1.
    destruct (sub_loop left right c1) as [[ds2 c2] rest2] eqn:E2. intro_triple.
    apply sub_digit_step_spec in E1 as (V1 & Hd & Hc1); try assumption.
    apply IH in E2 as (V2 & Hok2 & Hc2 & L & pre & -> & Lp); try assumption; [| lia].
    rewrite !zlength_cons, pow32_succ by apply zlength_nonneg. cbn [digits_value].
    splits; [lia | now constructor | lia | lia | lia |].
    exists (l :: pre). rewrite zlength_cons. split; [reflexivity | lia].
Qed.

Lemma increase_digits_spec ds ds' o : digits_ok ds -> increase_digits ds = (ds', o) ->
  digits_value ds' + B32 ^ zlength ds * Z.b2z o = digits_value ds + 1
  /\ digits_ok ds' /\ zlength ds' = zlength ds.
Proof.
  intros Hok. revert ds' o. induction Hok as [|d ds Hd Hok IH]; intros ds' o; cbn [increase_digits].
  - intro_pair. splits; now constructor.
  - unfold DIGIT_MAX. destruct (Z.eqb_spec d 4294967295) as [-> |Hne].
    + destruct (increase_digits ds) as [rest o'] eqn:E. intro_pair.
      destruct (IH _ _ eq_refl) as (V & Hok' & L).
      rewrite !zlength_cons, pow32_succ by apply zlength_nonneg. cbn [digits_value].
      splits; [lia | | lia]. apply Forall_cons; [unfold is_u32; lia | assumption].
    + intro_pair. rewrite u32_small by (unfold is_u32 in *; lia). cbn [digits_value Z.b2z].
      splits; [lia | | now rewrite !zlength_cons].
      apply Forall_cons; [unfold is_u32 in *; lia | assumption].
Qed.

Lemma decrease_digits_spec ds done rest : digits_ok ds -> 0 < digits_value ds ->
  decrease_digits ds = (done, rest) ->
  digits_value done + B32 ^ zlength done * digits_value rest = digits_value ds - 1
  /\ digits_ok done /\ done <> []
  /\ exists pre, ds = pre ++ rest /\ zlength pre = zlength done.
Proof.
  intros Hok. revert done rest. induction Hok as [|d ds Hd Hok IH]; intros done rest; cbn [decrease_digits digits_value].
  - lia.
  - unfold DIGIT_MAX. intros Hpos. destruct (Z.eqb_spec d 0) as [-> |Hne].
    + destruct (decrease_digits ds) as [done' rest'] eqn:E. intro_pair.
      destruct (IH done' rest' ltac:(lia) eq_refl) as (V & Hok' & _ & pre & -> & L).
      rewrite !zlength_cons, pow32_succ by apply zlength_nonneg. cbn [digits_value].
      splits; [lia | | easy |].
      * apply Forall_cons; [unfold is_u32; lia | assumption].
      * exists (0 :: pre). rewrite zlength_cons. split; [reflexivity | lia].
    + intro_pair. rewrite u32_small by (unfold is_u32 in *; lia). cbn [digits_value].
      change (zlength [d - 1]) with 1. splits; [lia | | easy |].
      * repeat constructor; unfold is_u32 in *; lia.
      * exists [d]. auto.
Qed.

(** ** Sizes in bytes *)

Lemma get_byte_size_eq size : ECMA_BIGINT_GET_BYTE_SIZE size = 8 * ((size + 4) / 8).
Proof.
  unfold ECMA_BIGINT_GET_BYTE_SIZE. change (2 * 4 - 1) with (Z.ones 3).
  rewrite <- Z.ldiff_land, Z.ldiff_ones_r by lia.
  rewrite Z.shiftl_mul_pow2, Z.shiftr_div_pow2 by lia. change (2 ^ 3) with 8. lia.
Qed.

Lemma land_size_mask x : is_u32 x -> Z.land x 4294967292 = 4 * (x / 4).
Proof.
  intros Hx. change 4294967292 with (Z.ldiff (Z.ones 32) (Z.ones 2)).
  rewrite Z.ldiff_land, Z.land_assoc, Z.land_ones, <- Z.ldiff_land, Z.ldiff_ones_r by lia.
  change (2 ^ 32) with B32. rewrite Z.mod_small by exact Hx.
  rewrite Z.shiftl_mul_pow2, Z.shiftr_div_pow2 by lia. change (2 ^ 2) with 4. lia.
Qed.

Lemma size_is_odd_eq n : ECMA_BIGINT_SIZE_IS_ODD (4 * n) = Z.odd n.
Proof.
  unfold ECMA_BIGINT_SIZE_IS_ODD. change 4 with (Z.shiftl 1 2) at 2.
  replace (4 * n) with (Z.shiftl n 2) by (rewrite Z.shiftl_mul_pow2; lia).
  rewrite <- Z.shiftl_land. change 1 with (Z.ones 1). rewrite Z.land_ones by lia.
  change (2 ^ 1) with 2. rewrite Zmod_odd. now destruct (Z.odd n).
Qed.

Lemma get_size_fresh v :
  big_uint_fresh v -> digits_size (bigint_digits v) <= ECMA_BIGINT_MAX_SIZE ->
  ECMA_BIGINT_GET_SIZE v = digits_size (bigint_digits v).
Proof.
  intros [_ Hs] Hm. unfold ECMA_BIGINT_GET_SIZE, digits_size, ECMA_BIGINT_MAX_SIZE in *.
  pose proof (zlength_nonneg (bigint_digits v)).
  rewrite land_size_mask by (unfold is_u32; lia). Z.div_mod_to_equations. lia.
Qed.

(** A fresh value is well formed as soon as its digits are. *)
Lemma fresh_wf v :
  big_uint_fresh v -> digits_ok (bigint_digits v) -> last (bigint_digits v) 0 <> 0 ->
  digits_size (bigint_digits v) <= ECMA_BIGINT_MAX_SIZE -> big_uint_wf v.
Proof. intros. split; try assumption. now apply get_size_fresh. Qed.

Lemma primitive_fresh size ds : size = digits_size ds -> big_uint_fresh (mk_primitive 14 size ds).
Proof. intros ->. split; reflexivity. Qed.

(** Growing an odd run by a digit, or shrinking an even one, keeps the block. *)
Lemma primitive_bytes_odd a b :
  Z.odd (zlength a) = true -> zlength b = zlength a + 1 -> primitive_bytes b = primitive_bytes a.
Proof.
  intros Ho Hl. apply Zodd_bool_iff, Zodd_ex in Ho as [k Hk].
  unfold primitive_bytes, digits_size. rewrite !get_byte_size_eq, Hl, Hk.
  Z.div_mod_to_equations. lia.
Qed.

(** The size limit in terms of the value *)
Lemma max_size_digits : ECMA_BIGINT_MAX_SIZE = 4 * ECMA_BIGINT_MAX_DIGITS.
Proof. reflexivity. Qed.

Lemma too_large_size ds :
  digits_ok ds -> last ds 0 <> 0 -> ECMA_BIGINT_MAX_SIZE < digits_size ds ->
  big_uint_too_large (digits_value ds).
Proof.
  intros Hok Hl Hs. unfold big_uint_too_large, digits_size in *. rewrite max_size_digits in Hs.
  eapply Z.le_trans; [| now apply digits_value_lower].
  apply Z.pow_le_mono_r; lia.
Qed.

Lemma wf_not_too_large v : big_uint_wf v -> ~ big_uint_too_large (big_uint_value v).
Proof.
  intros [Hs Hok Hl Hm] Hbig. unfold big_uint_too_large, big_uint_value, digits_size in *.
  rewrite max_size_digits in Hm. pose proof (digits_value_bound _ Hok) as [_ Hb].
  apply (Z.lt_irrefl (digits_value (bigint_digits v))).
  eapply Z.lt_le_trans; [apply Hb |]. eapply Z.le_trans; [| apply Hbig].
  apply Z.pow_le_mono_r; lia.
Qed.

Lemma wf_nonempty v : big_uint_wf v -> bigint_digits v <> [].
Proof. intros Hv. apply last_nonzero_nonempty, Hv. Qed.

Lemma wf_value_pos v : big_uint_wf v -> 0 < big_uint_value v.
Proof. intros Hv. apply digits_value_pos; apply Hv. Qed.

Section Allocation.
Context {HA : HeapAlloc}.

Lemma wp_create size (Q : option ecma_extended_primitive_t -> Z -> Prop) :
  (size <= ECMA_BIGINT_MAX_SIZE ->
     Q (Some (mk_primitive 14 size [])) (ECMA_BIGINT_GET_BYTE_SIZE size + sizeof_primitive)) ->
  ((heap_ample -> ECMA_BIGINT_MAX_SIZE < size) -> Q None 0) ->
  wp (ecma_bigint_create size) Q.
Proof.
  intros HS HN. unfold ecma_bigint_create. wp_step; zbool.
  - wp_step. now apply HN.
  - do 2 wp_step; [| intros Hna]; wp_step; rewrite Z.add_0_r.
    + now apply HS.
    + apply HN. intros Ha. now contradiction Hna.
Qed.

Lemma wp_deref v (Q : option ecma_extended_primitive_t -> Z -> Prop) :
  big_uint_fresh v -> digits_size (bigint_digits v) <= ECMA_BIGINT_MAX_SIZE ->
  Q None (- primitive_bytes (bigint_digits v)) -> wp (ecma_deref_bigint v) Q.
Proof.
  intros Hf Hm HQ. unfold ecma_deref_bigint. cbv zeta. cbn [refs_and_type].
  rewrite (proj1 Hf). cbn -[wp bind]. do 3 wp_step. cbv beta.
  change (ECMA_BIGINT_GET_SIZE (mk_primitive _ (bigint_sign_and_size v) _)) with (ECMA_BIGINT_GET_SIZE v).
  rewrite (get_size_fresh v Hf Hm), Z.add_0_r. exact HQ.
Qed.

Lemma result_fresh v x :
  big_uint_fresh v -> digits_ok (bigint_digits v) -> last (bigint_digits v) 0 <> 0 ->
  digits_size (bigint_digits v) <= ECMA_BIGINT_MAX_SIZE ->
  digits_value (bigint_digits v) = x ->
  big_uint_result x (BIGINT_PTR v) (primitive_bytes (bigint_digits v)).
Proof. intros. cbn. splits; try easy. now apply fresh_wf. Qed.

(** What ecma_big_uint_extend delivers for a run of digits that becomes
    normalised when the new digit is added. *)
Lemma wp_extend v digit x (Q : bigint_ptr -> Z -> Prop) :
  big_uint_fresh v -> digits_ok (bigint_digits v) ->
  digits_size (bigint_digits v) <= ECMA_BIGINT_MAX_SIZE ->
  is_u32 digit -> digit <> 0 ->
  x = digits_value (bigint_digits v ++ [digit]) ->
  (forall res held, big_uint_result x res held ->
     Q res (held - primitive_bytes (bigint_digits v))) ->
  wp (ecma_big_uint_extend v digit) Q.
Proof.
  intros Hf Hok Hm Hd Hnz Hx HQ. set (ds := bigint_digits v) in *.
  assert (Hok' : digits_ok (ds ++ [digit])) by (apply Forall_app; split; [assumption | now constructor]).
  assert (Hl' : last (ds ++ [digit]) 0 <> 0) by now rewrite last_last.
  assert (Hsz : digits_size (ds ++ [digit]) = digits_size ds + 4)
    by (unfold digits_size; rewrite zlength_snoc; lia).
  assert (Hn : 0 <= digits_size ds) by (unfold digits_size; pose proof (zlength_nonneg ds); lia).
  unfold ecma_big_uint_extend. rewrite (get_size_fresh v Hf Hm). fold ds.
  rewrite (proj2 Hf). fold ds. unfold ECMA_BIGINT_MAX_SIZE in *.
  rewrite (u32_small (digits_size ds + 4)) by (unfold is_u32; lia).
  unfold digits_size at 1. rewrite size_is_odd_eq. wp_step; rename E into Eo.
  - wp_step. replace 0 with (primitive_bytes (ds ++ [digit]) - primitive_bytes ds).
    2: { rewrite (primitive_bytes_odd ds); [lia | assumption | apply zlength_snoc]. }
    assert (Hm' : digits_size (ds ++ [digit]) <= 65536).
    { apply Zodd_bool_iff, Zodd_ex in Eo as [k Hk]. rewrite Hsz. unfold digits_size in *. lia. }
    apply HQ, result_fresh; try assumption; [| now symmetry].
    split; [apply Hf | symmetry; exact Hsz].
  - wp_step. apply wp_create.
    + intros Hs. wp_step. apply wp_deref; [assumption | assumption |]. wp_step.
      held_is (primitive_bytes (ds ++ [digit]) - primitive_bytes ds).
      { unfold primitive_bytes. fold ds. rewrite Hsz. lia. }
      apply HQ, result_fresh; try assumption.
      * now apply primitive_fresh.
      * change (digits_size (ds ++ [digit]) <= ECMA_BIGINT_MAX_SIZE). now rewrite Hsz.
      * now symmetry.
    + intros Hs. wp_step. apply wp_deref; [assumption | assumption |]. wp_step. fold ds.
      held_is (0 - primitive_bytes ds). { lia. }
      apply HQ. cbn. split; [reflexivity |]. intros Ha. subst x.
      apply too_large_size; try assumption. rewrite Hsz. now apply Hs.
Qed.
End Allocation.

Lemma kept_digits ds kept :
  digits_ok ds -> rev (skip_zero_digits (rev ds)) = kept ->
  digits_value kept = digits_value ds /\ digits_ok kept /\ zlength kept <= zlength ds
  /\ (kept = [] \/ last kept 0 <> 0).
Proof.
  intros Hok <-. pose proof (skip_zero_value (rev ds)) as V. rewrite rev_involutive in V.
  destruct (skip_zero_suffix (rev ds)) as [zs Ez].
  assert (Eds : ds = rev (skip_zero_digits (rev ds)) ++ rev zs).
  { rewrite <- (rev_involutive ds) at 1. rewrite Ez at 1. now rewrite rev_app_distr. }
  splits; [assumption | | |].
  - rewrite Eds in Hok. now apply Forall_app_inv in Hok as [? _].
  - rewrite Eds at 2. rewrite zlength_app. pose proof (zlength_nonneg (rev zs)). lia.
  - rewrite last_hd_rev, rev_involutive.
    destruct (Z.eq_dec (hd 0 (skip_zero_digits (rev ds))) 0) as [E|E]; [left | now right].
    now rewrite (skip_zero_head _ E).
Qed.

Section Normalisation.
Context {HA : HeapAlloc}.

Lemma wp_normalize v x (Q : bigint_ptr -> Z -> Prop) :
  big_uint_fresh v -> digits_ok (bigint_digits v) ->
  digits_size (bigint_digits v) <= ECMA_BIGINT_MAX_SIZE -> x = digits_value (bigint_digits v) ->
  (forall res held, big_uint_result x res held ->
     Q res (held - primitive_bytes (bigint_digits v))) ->
  wp (ecma_big_uint_normalize_result v) Q.
Proof.
  intros Hf Hok Hm Hx HQ. unfold ecma_big_uint_normalize_result.
  remember (rev (skip_zero_digits (rev (bigint_digits v)))) as kept eqn:Ek. symmetry in Ek.
  destruct (kept_digits _ _ Hok Ek) as (V & Hok' & L & Hl). set (ds := bigint_digits v) in *.
  destruct kept as [|d kept'].
  - wp_step. apply wp_deref; [assumption .. |]. wp_step. fold ds.
    held_is (0 - primitive_bytes ds). { lia. }
    apply HQ. cbn. now rewrite Hx, <- V.
  - destruct Hl as [Hl | Hl]; [discriminate |]. set (kept := d :: kept') in *. clearbody kept.
    assert (Hs : digits_size kept <= digits_size ds) by (unfold digits_size; lia).
    rewrite (get_size_fresh v Hf Hm). fold ds. unfold digits_size at 1 2.
    rewrite size_is_odd_eq, (proj2 Hf). fold ds. wp_step; zbool.
    + wp_step. held_is (primitive_bytes kept - primitive_bytes ds).
      { rewrite (primitive_bytes_odd kept ds); [lia | assumption | unfold digits_size in *; lia]. }
      apply HQ, result_fresh; cbn [bigint_digits]; try assumption; try lia.
      pose proof (zlength_nonneg kept). unfold ECMA_BIGINT_MAX_SIZE in *.
      split; [apply Hf |]. cbn [bigint_sign_and_size bigint_digits].
      rewrite u32_small by (unfold is_u32, digits_size in *; lia).
      unfold digits_size in *. lia.
    + wp_step. apply wp_create.
      * intros Hc. wp_step. apply wp_deref; [assumption .. |]. wp_step. fold ds.
        held_is (primitive_bytes kept - primitive_bytes ds). { unfold primitive_bytes. lia. }
        apply HQ, result_fresh; cbn [bigint_digits set_digits]; try assumption; try lia.
        now apply primitive_fresh.
      * intros Hc. wp_step. apply wp_deref; [assumption .. |]. wp_step. fold ds.
        held_is (0 - primitive_bytes ds). { lia. }
        apply HQ. split; [reflexivity |]. intros Ha. specialize (Hc Ha). lia.
Qed.

Lemma wp_increase_result v x (Q : bigint_ptr -> Z -> Prop) :
  big_uint_fresh v -> digits_ok (bigint_digits v) ->
  digits_size (bigint_digits v) <= ECMA_BIGINT_MAX_SIZE -> x = digits_value (bigint_digits v) + 1 ->
  (forall res held, big_uint_result x res held ->
     Q res (held - primitive_bytes (bigint_digits v))) ->
  wp (ecma_big_uint_increase_result v) Q.
Proof.
  intros Hf Hok Hm Hx HQ. unfold ecma_big_uint_increase_result.
  destruct (increase_digits (bigint_digits v)) as [ds' o] eqn:E.
  apply increase_digits_spec in E as (V & Hok' & L); [| assumption].
  assert (Hs : digits_size ds' = digits_size (bigint_digits v)) by (unfold digits_size; lia).
  assert (Hb : primitive_bytes ds' = primitive_bytes (bigint_digits v)) by (unfold primitive_bytes; now rewrite Hs).
  assert (Hf' : big_uint_fresh (set_digits v ds')).
  { split; [apply Hf |]. cbn. rewrite (proj2 Hf). now symmetry. }
  rewrite <- Hb in HQ. rewrite <- Hs in Hm. destruct o.
  - eapply wp_extend; try eassumption; [unfold is_u32; lia | lia |].
    cbn [set_digits bigint_digits Z.b2z] in *. rewrite digits_value_snoc, L. lia.
  - cbn [Z.b2z] in V. destruct (Z.eqb_spec (last ds' 0) 0); cbn [negb].
    + apply (wp_normalize _ x); try assumption. cbn [set_digits bigint_digits]. lia.
    + wp_step. held_is (primitive_bytes ds' - primitive_bytes ds'). { lia. }
      apply HQ, (result_fresh (set_digits v ds')); try assumption. cbn [set_digits bigint_digits]. lia.
Qed.
End Normalisation.

(** ** Rows of the multiplication *)

Lemma mul_carry_loop_spec dst : digits_ok dst -> forall carry, is_u32 carry ->
  digits_value dst + carry < B32 ^ zlength dst ->
  digits_value (mul_carry_loop dst carry) = digits_value dst + carry
  /\ digits_ok (mul_carry_loop dst carry) /\ zlength (mul_carry_loop dst carry) = zlength dst.
Proof.
  induction 1 as [|v dst Hv Hok IH]; intros carry Hc; cbn [mul_carry_loop digits_value].
  - rewrite (@zlength_nil Z), Z.pow_0_r. intros Hlt.
    destruct (Z.eqb_spec carry 0); [subst | unfold is_u32 in *; lia].
    splits; [reflexivity | constructor | reflexivity].
  - rewrite zlength_cons, pow32_succ by apply zlength_nonneg. intros Hlt.
    destruct (Z.eqb_spec carry 0) as [->|Hnz].
    { splits; [cbn [digits_value]; lia | now constructor | now rewrite zlength_cons]. }
    pose proof (u32_add_cases v carry Hv Hc) as Hw. set (w := u32 (v + carry)) in *.
    assert (Hw' : exists c, (if w <? carry then 1 else 0) = c /\ 0 <= c <= 1 /\ w + B32 * c = v + carry /\ is_u32 w).
    { destruct (Z.ltb_spec w carry); eexists; (split; [reflexivity |]); unfold is_u32 in *; lia. }
    destruct Hw' as (c & -> & Hc' & Ew & Hw').
    destruct (IH c) as (V & Hok' & L); [unfold is_u32; lia | unfold is_u32 in *; lia |].
    cbn [digits_value]. rewrite zlength_cons. splits; [lia | now constructor | lia].
Qed.

Lemma mul_row_spec left : digits_ok left -> forall r carry dst,
  is_u32 r -> is_u32 carry -> digits_ok dst ->
  digits_value dst + digits_value left * r + carry < B32 ^ zlength dst ->
  digits_value (mul_row left r carry dst) = digits_value dst + digits_value left * r + carry
  /\ digits_ok (mul_row left r carry dst) /\ zlength (mul_row left r carry dst) = zlength dst.
Proof.
  induction 1 as [|l left Hl Hok IH]; intros r carry dst Hr Hc Hd; cbn [mul_row digits_value].
  - intros Hlt. replace (digits_value dst + 0 * r + carry) with (digits_value dst + carry) in * by lia.
    now apply mul_carry_loop_spec.
  - destruct dst as [|v dst]; cbn [digits_value].
    + rewrite (@zlength_nil Z), Z.pow_0_r. intros Hlt.
      pose proof (digits_value_bound left Hok) as [Hn _]. unfold is_u32 in *.
      assert (0 <= (l + B32 * digits_value left) * r) by (apply Z.mul_nonneg_nonneg; lia).
      assert (carry = 0) as -> by lia. cbn [mul_carry_loop Z.eqb digits_value]. splits; [lia | constructor | reflexivity].
    + inversion_clear Hd as [|? ? Hv Hd']. rewrite zlength_cons, pow32_succ by apply zlength_nonneg.
      intros Hlt. destruct (mul_step v l r carry) as [v' c'] eqn:E.
      apply mul_step_spec in E as (V1 & Hv' & Hc'); try assumption.
      destruct (IH r c' dst Hr Hc' Hd') as (V & Hok' & L); [unfold is_u32 in *; lia |].
      cbn [digits_value]. rewrite zlength_cons. splits; [lia | now constructor | lia].
Qed.

Lemma mul_rows_spec left right : digits_ok left -> digits_ok right -> forall dst,
  digits_ok dst -> digits_value dst + digits_value left * digits_value right < B32 ^ zlength dst ->
  digits_value (mul_rows left right dst) = digits_value dst + digits_value left * digits_value right
  /\ digits_ok (mul_rows left right dst) /\ zlength (mul_rows left right dst) = zlength dst.
Proof.
  intros Hl Hr. pose proof (digits_value_bound left Hl) as [Hn _].
  induction Hr as [|r right Hr Hok IH]; intros dst Hd; cbn [mul_rows digits_value]; intros Hlt.
  - splits; [lia | assumption | reflexivity].
  - pose proof (digits_value_bound right Hok) as [Hn2 _].
    set (L := digits_value left) in *. set (R := digits_value right) in *.
    assert (0 <= L * R) by (apply Z.mul_nonneg_nonneg; lia).
    assert (Hrow : exists dst', (if r =? 0 then dst else mul_row left r 0 dst) = dst'
              /\ digits_value dst' = digits_value dst + L * r /\ digits_ok dst' /\ zlength dst' = zlength dst).
    { destruct (Z.eqb_spec r 0) as [->|Hnz]; eexists; (split; [reflexivity |]).
      - splits; [lia | assumption | reflexivity].
      - destruct (mul_row_spec left Hl r 0 dst) as (V & Hok' & Len); try assumption; [unfold is_u32; lia | | ].
        + fold L. unfold is_u32 in *. lia.
        + fold L in V. splits; [lia | assumption | assumption]. }
    destruct Hrow as (dst' & -> & V & Hok' & Len).
    destruct dst' as [|d dst'].
    + rewrite (@zlength_nil Z) in Len. rewrite <- Len, Z.pow_0_r in Hlt. cbn [digits_value] in *.
      pose proof (digits_value_bound dst Hd). unfold is_u32 in *.
      splits; [lia | constructor | assumption].
    + inversion_clear Hok' as [|? ? Hd0 Hd']. rewrite zlength_cons in Len.
      rewrite <- Len, pow32_succ in Hlt by apply zlength_nonneg. cbn [digits_value] in *.
      destruct (IH dst' Hd') as (V' & Hok'' & Len'); [unfold is_u32 in *; lia |].
      rewrite zlength_cons. splits; [lia | now constructor | lia].
Qed.

(** ** Correctness of the operations *)

Lemma compare_digits_spec rl : digits_ok (rev rl) -> forall rr,
  digits_ok (rev rr) -> zlength rl = zlength rr ->
  compare_digits rl rr =
    match digits_value (rev rl) ?= digits_value (rev rr) with Lt => -1 | Eq => 0 | Gt => 1 end.
Proof.
  induction rl as [|l rl IH]; intros Hl [|r rr] Hr Hlen; cbn [compare_digits].
  { reflexivity. }
  { rewrite zlength_cons, (@zlength_nil Z) in Hlen. pose proof (zlength_nonneg rr). lia. }
  { rewrite zlength_cons, (@zlength_nil Z) in Hlen. pose proof (zlength_nonneg rl). lia. }
  rewrite !zlength_cons in Hlen.
  cbn [rev] in *. apply digits_ok_snoc in Hl as [Hl Hl0], Hr as [Hr Hr0].
  rewrite !digits_value_snoc. pose proof (digits_value_bound _ Hl). pose proof (digits_value_bound _ Hr).
  assert (E1 : zlength (rev rl) = zlength (rev rr)) by (unfold zlength in *; rewrite !length_rev; lia).
  rewrite E1 in *. pose proof (pow32_pos _ (zlength_nonneg (rev rr))).
  set (p := B32 ^ zlength (rev rr)) in *.
  destruct (Z.ltb_spec l r); [| destruct (Z.ltb_spec r l)].
  - symmetry. assert (p * l + p <= p * r) by nia.
    destruct (Z.compare_spec (digits_value (rev rl) + p * l) (digits_value (rev rr) + p * r)); lia.
  - symmetry. assert (p * r + p <= p * l) by nia.
    destruct (Z.compare_spec (digits_value (rev rl) + p * l) (digits_value (rev rr) + p * r)); lia.
  - assert (l = r) as -> by lia. rewrite IH by (assumption || lia).
    now rewrite !(Z.add_comm _ (p * r)), Z.add_compare_mono_l.
Qed.

Lemma wf_size_lt_value a b : big_uint_wf a -> big_uint_wf b ->
  ECMA_BIGINT_GET_SIZE a < ECMA_BIGINT_GET_SIZE b -> big_uint_value a < big_uint_value b.
Proof.
  intros [Sa Oa La _] [Sb Ob Lb _]. rewrite Sa, Sb. unfold big_uint_value, digits_size. intros Hlt.
  pose proof (digits_value_bound _ Oa) as [_ Ha]. pose proof (digits_value_lower _ Ob Lb) as Hb.
  eapply Z.lt_le_trans; [apply Ha |]. eapply Z.le_trans; [| apply Hb].
  apply Z.pow_le_mono_r; lia.
Qed.

Lemma big_uint_compare_value left right : big_uint_wf left -> big_uint_wf right ->
  ecma_big_uint_compare left right =
    match big_uint_value left ?= big_uint_value right with Lt => -1 | Eq => 0 | Gt => 1 end.
Proof.
  intros Hl Hr. unfold ecma_big_uint_compare.
  destruct (Z.ltb_spec (ECMA_BIGINT_GET_SIZE right) (ECMA_BIGINT_GET_SIZE left)) as [H|H].
  { apply wf_size_lt_value in H; [| assumption ..].
    now rewrite (proj2 (Z.compare_gt_iff _ _)) by assumption. }
  destruct (Z.ltb_spec (ECMA_BIGINT_GET_SIZE left) (ECMA_BIGINT_GET_SIZE right)) as [H'|H'].
  { apply wf_size_lt_value in H'; [| assumption ..].
    now rewrite (proj2 (Z.compare_lt_iff _ _)) by assumption. }
  rewrite compare_digits_spec; rewrite ?rev_involutive.
  - reflexivity.
  - apply Hl.
  - apply Hr.
  - rewrite (wf_size _ Hl), (wf_size _ Hr) in *. unfold digits_size, zlength in *. rewrite !length_rev. lia.
Qed.

(** ** Recognising all-ones and power-of-two magnitudes *)

Lemma zlength_map {A B} (f : A -> B) l : zlength (map f l) = zlength l.
Proof. unfold zlength. now rewrite length_map. Qed.

Lemma zlength_removelast {A} (l : list A) : l <> [] -> zlength (removelast l) = zlength l - 1.
Proof.
  intros H. destruct (exists_last H) as (l' & x & ->). rewrite removelast_last, zlength_app.
  unfold zlength; cbn [length]. lia.
Qed.

Lemma digits_value_repeat0 n : digits_value (repeat 0 n) = 0.
Proof. induction n as [|n IH]; cbn [repeat digits_value]; lia. Qed.

Lemma digits_ok_repeat0 n : digits_ok (repeat 0 n).
Proof. apply Forall_forall. intros x ->%repeat_spec. unfold is_u32; lia. Qed.

Lemma map_const {A} (x : Z) (l : list A) : map (fun _ => x) l = repeat x (length l).
Proof. induction l as [|a l IH]; cbn; [reflexivity | now rewrite IH]. Qed.

Lemma increase_digits_flag ds : snd (increase_digits ds) = forallb (fun d => d =? DIGIT_MAX) ds.
Proof.
  induction ds as [|d ds IH]; [reflexivity | cbn [increase_digits forallb]].
  destruct (d =? DIGIT_MAX); [| reflexivity]. now destruct (increase_digits ds).
Qed.

Lemma all_max_digits_value {A} (l : list A) :
  digits_value (map (fun _ => DIGIT_MAX) l) = B32 ^ zlength l - 1.
Proof.
  induction l as [|x l IH]; [reflexivity |].
  cbn [map digits_value]. rewrite IH, zlength_cons, pow32_succ by apply zlength_nonneg. unfold DIGIT_MAX. lia.
Qed.

Lemma all_max_value ds : forallb (fun d => d =? DIGIT_MAX) ds = true -> digits_value ds = B32 ^ zlength ds - 1.
Proof.
  intros H. rewrite <- all_max_digits_value. f_equal.
  induction ds as [|d ds IH]; [reflexivity | cbn in *]. apply andb_prop in H as [->%Z.eqb_eq H].
  now rewrite <- IH.
Qed.

(** The unrolled tests of increase and decrease, on a non-empty run *)
Lemma all_max_test ds : ds <> [] ->
  (hd 0 ds =? DIGIT_MAX) && (last ds 0 =? DIGIT_MAX) && forallb (fun d => d =? DIGIT_MAX) (tl ds)
    = forallb (fun d => d =? DIGIT_MAX) ds.
Proof.
  destruct ds as [|d ds]; [easy | intros _]. cbn [hd tl forallb].
  destruct (Z.eqb_spec d DIGIT_MAX) as [->|]; [| reflexivity]. cbn [andb].
  destruct (forallb _ ds) eqn:E; [| apply andb_false_r].
  rewrite andb_true_r. destruct ds as [|x ds]; [reflexivity |].
  destruct (@exists_last _ (x :: ds)) as (l & y & Ey); [easy |]. rewrite Ey in *.
  rewrite forallb_app in E. apply andb_prop in E as [_ E]. cbn in E.
  change (DIGIT_MAX :: l ++ [y]) with ((DIGIT_MAX :: l) ++ [y]). rewrite last_last.
  now rewrite andb_true_r in E.
Qed.

Lemma digits_value_zero ds : digits_ok ds -> digits_value ds = 0 <-> forallb (fun d => d =? 0) ds = true.
Proof.
  induction 1 as [|d ds Hd Hok IH]; [easy |]. cbn [digits_value forallb]. rewrite andb_true_iff, <- IH, Z.eqb_eq.
  pose proof (digits_value_bound _ Hok). unfold is_u32 in Hd. split; lia.
Qed.

Lemma power_test ds : digits_ok ds -> ds <> [] -> 1 < digits_value ds ->
  (hd 0 ds =? 0) && (last ds 0 =? 1) && forallb (fun d => d =? 0) (removelast (tl ds))
    = (digits_value ds =? B32 ^ (zlength ds - 1)).
Proof.
  intros Hok Hne Hgt. destruct ds as [|d [|d' ds]]; [easy | |].
  { change (digits_value [d]) with (d + B32 * 0) in *. rewrite Z.mul_0_r, Z.add_0_r in *.
    change (B32 ^ (zlength [d] - 1)) with 1. cbn.
    destruct (Z.eqb_spec d 0), (Z.eqb_spec d 1); cbn; lia || reflexivity. }
  destruct (@exists_last _ (d' :: ds)) as (l & y & Ey); [easy |]. rewrite Ey in *.
  change (last (d :: l ++ [y]) 0) with (last ((d :: l) ++ [y]) 0).
  cbn [hd tl]. rewrite last_last, removelast_last.
  change (d :: l ++ [y]) with ((d :: l) ++ [y]) in *.
  apply digits_ok_snoc in Hok as [Hok Hy]. rewrite digits_value_snoc, zlength_snoc, Z.add_simpl_r in *.
  pose proof (digits_value_bound _ Hok) as Hb. pose proof (pow32_pos _ (zlength_nonneg (d :: l))) as Hp.
  set (p := B32 ^ zlength (d :: l)) in *. clearbody p.
  replace ((d =? 0) && (y =? 1) && forallb (fun d0 => d0 =? 0) l)
    with (forallb (fun d0 => d0 =? 0) (d :: l) && (y =? 1))
    by (cbn [forallb]; now rewrite <- !andb_assoc, (andb_comm (y =? 1))).
  apply eq_true_iff_eq. rewrite andb_true_iff, <- digits_value_zero, !Z.eqb_eq by assumption.
  unfold is_u32 in Hy. split; [intros [-> ->]; lia | intros H]. assert (y = 1) as -> by nia. lia.
Qed.

(** Digits of the same length are determined by their value. *)
Lemma digits_value_inj a b : digits_ok a -> digits_ok b -> zlength a = zlength b ->
  digits_value a = digits_value b -> a = b.
Proof.
  intros Ha. revert b. induction Ha as [|x a Hx Ha IH]; intros b Hb L V.
  - destruct b; [reflexivity | rewrite zlength_cons, (@zlength_nil Z) in L; pose proof (zlength_nonneg b); lia].
  - destruct Hb as [|y b Hy Hb]; [rewrite zlength_cons, (@zlength_nil Z) in L; pose proof (zlength_nonneg a); lia |].
    rewrite !zlength_cons in L. cbn [digits_value] in V. unfold is_u32 in Hx, Hy.
    assert (x = y) as -> by lia. f_equal. apply IH; [assumption | lia | lia].
Qed.

(** ** Leading zeros *)

(** Number of significant bits *)
Definition bit_length (d : Z) : Z := if d =? 0 then 0 else Z.log2 d + 1.

Lemma bit_length_shiftr d n : 0 <= n -> 0 <= d -> 0 < Z.shiftr d n ->
  bit_length d = n + bit_length (Z.shiftr d n).
Proof.
  intros Hn Hd Hs. unfold bit_length. destruct (Z.eqb_spec (Z.shiftr d n) 0); [lia |].
  destruct (Z.eqb_spec d 0) as [->|]; [rewrite Z.shiftr_0_l in Hs; lia |].
  rewrite Z.log2_shiftr by lia. destruct (Z.lt_ge_cases (Z.log2 d) n); [| lia].
  rewrite Z.shiftr_eq_0 in Hs; lia.
Qed.

Lemma count_leading_zero_loop_eq fuel digit shift result :
  count_leading_zero_loop (S fuel) digit shift result =
    let value := Z.shiftr digit shift in
    let '(digit', result') := if 0 <? value then (value, u32 (result - shift)) else (digit, result) in
    if 0 <? Z.shiftr shift 1 then count_leading_zero_loop fuel digit' (Z.shiftr shift 1) result'
    else u32 (result' - digit').
Proof. cbn [count_leading_zero_loop]. now destruct (0 <? Z.shiftr digit shift). Qed.

Lemma half_pow2 k : Z.shiftr (2 ^ Z.of_nat (S k)) 1 = 2 ^ Z.of_nat k.
Proof.
  rewrite Nat2Z.inj_succ, Z.pow_succ_r, Z.mul_comm by lia.
  rewrite Z.shiftr_div_pow2, Z.pow_1_r by lia. apply Z.div_mul. lia.
Qed.

Lemma count_leading_zero_loop_spec k : forall d result,
  0 <= d < 2 ^ (2 ^ Z.of_nat (S k)) -> 2 ^ Z.of_nat (S k) <= result < B32 ->
  count_leading_zero_loop (S k) d (2 ^ Z.of_nat k) result = result - bit_length d.
Proof.
  induction k as [|k IH]; intros d result Hd Hr; rewrite count_leading_zero_loop_eq; cbv zeta.
  - change (2 ^ 2 ^ Z.of_nat 1) with 4 in Hd. change (2 ^ Z.of_nat 1) with 2 in Hr.
    assert (C : d = 0 \/ d = 1 \/ d = 2 \/ d = 3) by lia.
    destruct C as [->|[->|[->| ->]]]; cbn -[Z.sub u32];
      rewrite ?(u32_small (result - 1)) by (unfold is_u32; lia); rewrite ?u32_small by (unfold is_u32; lia); lia.
  - rewrite half_pow2. set (s := 2 ^ Z.of_nat (S k)) in *.
    assert (Hpow : 2 ^ Z.of_nat (S (S k)) = 2 * s) by (unfold s; rewrite <- Z.pow_succ_r by lia; f_equal; lia).
    rewrite Hpow in *. assert (Hpos : 0 < s) by (apply Z.pow_pos_nonneg; lia).
    assert (0 < 2 ^ Z.of_nat k) by (apply Z.pow_pos_nonneg; lia).
    destruct (Z.ltb_spec 0 (2 ^ Z.of_nat k)); [| lia].
    assert (Hdiv : 0 <= Z.shiftr d s < 2 ^ s).
    { rewrite Z.shiftr_div_pow2 by lia. rewrite <- Z.add_diag, Z.pow_add_r in Hd by lia.
      split; [apply Z.div_pos | apply Z.div_lt_upper_bound]; lia. }
    destruct (Z.ltb_spec 0 (Z.shiftr d s)) as [Hs|Hs].
    + rewrite u32_small by (unfold is_u32; lia). rewrite IH by lia.
      rewrite (bit_length_shiftr d s) by lia. lia.
    + rewrite IH; [reflexivity | | lia].
      assert (Hz : Z.shiftr d s = 0) by lia. rewrite Z.shiftr_div_pow2 in Hz by lia.
      apply Z.div_small_iff in Hz; [lia |]. apply Z.pow_nonzero; lia.
Qed.

Lemma count_leading_zero_bits d : is_u32 d -> ecma_big_uint_count_leading_zero d = 32 - bit_length d.
Proof.
  intros Hd. unfold ecma_big_uint_count_leading_zero.
  apply (count_leading_zero_loop_spec 4 d 32); change (2 ^ Z.of_nat 5) with 32; unfold is_u32 in Hd; lia.
Qed.

Section Operations.
Context {HA : HeapAlloc}.

(** The shape shared by the operations: create a block for a run of digits
    that represents [x] exactly, or report that the block cannot be had. *)
Lemma wp_create_digits size x ds :
  digits_size ds = size -> digits_ok ds -> last ds 0 <> 0 -> digits_value ds = x ->
  forall k : option ecma_extended_primitive_t -> M bigint_ptr,
  (k None = ret BIGINT_NULL) -> (forall r, k (Some r) = ret (BIGINT_PTR (set_digits r ds))) ->
  wp (bind (ecma_bigint_create size) k) (big_uint_result x).
Proof.
  intros <- Hok Hl <- k HN HS. wp_step. apply wp_create.
  - intros Hm. rewrite HS. wp_step. rewrite Z.add_0_r. cbn [set_digits refs_and_type bigint_sign_and_size].
    apply (result_fresh (mk_primitive 14 (digits_size ds) ds)); try assumption; try reflexivity.
    now apply primitive_fresh.
  - intros Hm. rewrite HN. wp_step. cbn. split; [reflexivity |]. intros Ha.
    apply too_large_size; auto.
Qed.

(** A created block filled and then handed to a continuation that may grow or
    shrink it. *)
Lemma wp_create_then size x (k : option ecma_extended_primitive_t -> M bigint_ptr) :
  (size <= ECMA_BIGINT_MAX_SIZE -> wp (k (Some (mk_primitive 14 size [])))
     (fun res held => big_uint_result x res
        (held + (ECMA_BIGINT_GET_BYTE_SIZE size + sizeof_primitive)))) ->
  (k None = ret BIGINT_NULL) -> (ECMA_BIGINT_MAX_SIZE < size -> big_uint_too_large x) ->
  wp (bind (ecma_bigint_create size) k) (big_uint_result x).
Proof.
  intros HS HN Hbig. wp_step. apply wp_create.
  - intros Hm. eapply wp_mono; [now apply HS |]. cbn. intros a d Hd. now rewrite Z.add_comm.
  - intros Hm. rewrite HN. wp_step. cbn. split; [reflexivity |]. auto.
Qed.

(** Filling the created block with digits whose value needs all of them *)
Lemma result_fill size ds x :
  digits_size ds = size -> size <= ECMA_BIGINT_MAX_SIZE -> digits_ok ds ->
  0 < x -> B32 ^ (zlength ds - 1) <= x -> digits_value ds = x ->
  big_uint_result x (BIGINT_PTR (set_digits (mk_primitive 14 size []) ds))
    (0 + (ECMA_BIGINT_GET_BYTE_SIZE size + sizeof_primitive)).
Proof.
  intros <- Hm Hok Hpos Hlow Hv. rewrite Z.add_0_l.
  apply (result_fresh (mk_primitive 14 (digits_size ds) ds)); try assumption.
  - now apply primitive_fresh.
  - apply last_nonzero; cbn [bigint_digits]; [assumption | | lia].
    intros ->. cbn [digits_value] in Hv. lia.
Qed.

(** Growing the created block by one digit *)
Lemma wp_fill_extend size ds digit x :
  digits_size ds = size -> size <= ECMA_BIGINT_MAX_SIZE -> digits_ok ds ->
  is_u32 digit -> digit <> 0 -> digits_value ds + B32 ^ zlength ds * digit = x ->
  wp (ecma_big_uint_extend (set_digits (mk_primitive 14 size []) ds) digit)
     (fun res held => big_uint_result x res
        (held + (ECMA_BIGINT_GET_BYTE_SIZE size + sizeof_primitive))).
Proof.
  intros <- Hm Hok Hd Hnz Hx.
  apply wp_extend with (x := x); cbn [set_digits bigint_digits refs_and_type bigint_sign_and_size];
    try assumption.
  - now apply primitive_fresh.
  - now rewrite digits_value_snoc.
  - intros res held Hres. cbv beta. held_is held. { unfold primitive_bytes. lia. } assumption.
Qed.

(** Shrinking the created block to the digits that are needed *)
Lemma wp_fill_normalize size ds x :
  digits_size ds = size -> size <= ECMA_BIGINT_MAX_SIZE -> digits_ok ds -> digits_value ds = x ->
  wp (ecma_big_uint_normalize_result (set_digits (mk_primitive 14 size []) ds))
     (fun res held => big_uint_result x res
        (held + (ECMA_BIGINT_GET_BYTE_SIZE size + sizeof_primitive))).
Proof.
  intros <- Hm Hok Hx.
  apply wp_normalize with (x := x); cbn [set_digits bigint_digits refs_and_type bigint_sign_and_size];
    try assumption.
  - now apply primitive_fresh.
  - now symmetry.
  - intros res held Hres. cbv beta. held_is held. { unfold primitive_bytes. lia. } assumption.
Qed.

Lemma wf_bounds v : big_uint_wf v ->
  digits_ok (bigint_digits v) /\ 0 < big_uint_value v /\ bigint_digits v <> []
  /\ B32 ^ (zlength (bigint_digits v) - 1) <= big_uint_value v < B32 ^ zlength (bigint_digits v).
Proof.
  intros Hv. splits; try apply Hv.
  - now apply wf_value_pos.
  - now apply wf_nonempty.
  - apply digits_value_lower; apply Hv.
  - apply digits_value_bound, Hv.
Qed.

Lemma add_sorted left right :
  big_uint_wf left -> big_uint_wf right -> zlength (bigint_digits right) <= zlength (bigint_digits left) ->
  wp (bind (ecma_bigint_create (ECMA_BIGINT_GET_SIZE left)) (fun r =>
        match r with
        | None => ret BIGINT_NULL
        | Some r =>
            let '(ds, carry, rest) := add_loop (bigint_digits left) (bigint_digits right) 0 in
            if negb (carry =? 0) then
              let (rest', overflow) := increase_digits rest in
              let r' := set_digits r (ds ++ rest') in
              if overflow : bool then ecma_big_uint_extend r' 1 else ret (BIGINT_PTR r')
            else ret (BIGINT_PTR (set_digits r (ds ++ rest)))
        end))
    (big_uint_result (big_uint_value left + big_uint_value right)).
Proof.
  intros Hl Hr Hlen.
  destruct (wf_bounds _ Hl) as (Lok & Lpos & _ & Llow & _), (wf_bounds _ Hr) as (Rok & Rpos & _).
  pose proof (wf_max _ Hl) as Hmax. rewrite (wf_size _ Hl). unfold big_uint_value in *.
  destruct (add_loop _ _ 0) as [[ds carry] rest] eqn:E.
  apply add_loop_spec in E as (V & Hok & Hc & L & pre & Epre & Lp); [| assumption .. | lia].
  assert (Hrest : digits_ok rest) by (rewrite Epre in Lok; now apply Forall_app_inv in Lok as [_ ?]).
  assert (Ll : zlength (bigint_digits left) = zlength ds + zlength rest) by (rewrite Epre, zlength_app; lia).
  apply wp_create_then; [intros Hm | reflexivity | intros; lia].
  assert (Size : forall l, zlength l = zlength rest -> digits_size (ds ++ l) = digits_size (bigint_digits left))
    by (intros; unfold digits_size; rewrite zlength_app; lia).
  destruct (Z.eqb_spec carry 0) as [->|Hnz]; cbn [negb].
  { wp_step. apply result_fill; rewrite ?zlength_app, <- ?Ll; try lia.
    - now apply Size.
    - now apply Forall_app.
    - rewrite digits_value_app, L. lia. }
  assert (carry = 1) as -> by lia.
  destruct (increase_digits rest) as [rest' o] eqn:Ei.
  apply increase_digits_spec in Ei as (Vi & Hok' & L'); [| assumption].
  assert (Hds : digits_ok (ds ++ rest')) by now apply Forall_app.
  destruct o; cbn [Z.b2z] in Vi.
  - apply wp_fill_extend; try assumption; [now apply Size | unfold is_u32; lia |].
    rewrite digits_value_app, zlength_app, Z.pow_add_r, L, L' by apply zlength_nonneg.
    replace (digits_value rest) with (digits_value rest' + B32 ^ zlength rest - 1) in V by lia. lia.
  - wp_step. apply result_fill; rewrite ?zlength_app, ?L', <- ?Ll; try assumption; try lia.
    + now apply Size.
    + rewrite digits_value_app, L.
      replace (digits_value rest) with (digits_value rest' - 1) in V by lia. lia.
Qed.

Lemma wf_size_le a b : big_uint_wf a -> big_uint_wf b ->
  (ECMA_BIGINT_GET_SIZE a <? ECMA_BIGINT_GET_SIZE b)
    = (zlength (bigint_digits a) <? zlength (bigint_digits b)).
Proof.
  intros Ha Hb. rewrite (wf_size _ Ha), (wf_size _ Hb). unfold digits_size.
  destruct (Z.ltb_spec (zlength (bigint_digits a)) (zlength (bigint_digits b)));
    [apply Z.ltb_lt | apply Z.ltb_ge]; lia.
Qed.

Lemma wp_big_uint_add left right : big_uint_wf left -> big_uint_wf right ->
  wp (ecma_big_uint_add left right) (big_uint_result (big_uint_value left + big_uint_value right)).
Proof.
  intros Hl Hr. unfold ecma_big_uint_add. rewrite (wf_size_le _ _ Hl Hr).
  destruct (Z.ltb_spec (zlength (bigint_digits left)) (zlength (bigint_digits right))).
  - rewrite Z.add_comm. apply add_sorted; try assumption. lia.
  - apply add_sorted; try assumption.
Qed.

(** The digits written by the subtraction, and the part of the left operand
    above the point where the borrow stops *)
Lemma sub_written left right ds carry rest :
  digits_ok left -> digits_ok right -> zlength right <= zlength left ->
  digits_value right <= digits_value left -> sub_loop left right 0 = (ds, carry, rest) ->
  exists done rest',
    (if negb (carry =? 0) then decrease_digits rest else ([], rest)) = (done, rest')
    /\ digits_value ((ds ++ done) ++ rest') = digits_value left - digits_value right
    /\ digits_ok (ds ++ done)
    /\ exists pre, left = pre ++ rest' /\ zlength pre = zlength (ds ++ done).
Proof.
  intros Lok Rok Hlen Hle E.
  apply sub_loop_spec in E as (V & Hok & Hc & L & pre & Epre & Lp); [| assumption .. | lia].
  assert (Hrest : digits_ok rest) by (rewrite Epre in Lok; now apply Forall_app_inv in Lok as [_ ?]).
  destruct (Z.eqb_spec carry 0) as [->|Hnz]; cbn [negb].
  - exists [], rest. rewrite app_nil_r, digits_value_app, L. splits; try easy; [lia |].
    exists pre. split; [assumption | lia].
  - assert (carry = 1) as -> by lia. destruct (decrease_digits rest) as [done rest'] eqn:Ed.
    pose proof (pow32_pos _ (zlength_nonneg right)).
    pose proof (digits_value_bound _ Hok) as [_ Hdb]. rewrite L in Hdb.
    pose proof (digits_value_bound _ Hrest) as [Hr0 _].
    assert (0 < digits_value rest) by nia.
    apply decrease_digits_spec in Ed as (Vd & Hdok & _ & pre' & -> & Lpre'); [| assumption ..].
    exists done, rest'. splits; [reflexivity | | now apply Forall_app |].
    + rewrite !digits_value_app, zlength_app, Z.pow_add_r, L by apply zlength_nonneg.
      replace (digits_value (pre' ++ rest')) with
        (digits_value done + B32 ^ zlength done * digits_value rest' + 1) in V by lia. lia.
    + exists (pre ++ pre'). rewrite !zlength_app, <- app_assoc. split; [assumption | lia].
Qed.

Lemma wf_length_le a b : big_uint_wf a -> big_uint_wf b ->
  big_uint_value a <= big_uint_value b -> zlength (bigint_digits a) <= zlength (bigint_digits b).
Proof.
  intros Ha Hb Hle. apply Z.nlt_ge. intros H. apply Z.ltb_lt in H.
  rewrite <- wf_size_le in H by assumption.
  apply Z.ltb_lt, wf_size_lt_value in H; [lia | assumption ..].
Qed.

Lemma wp_big_uint_sub left right : big_uint_wf left -> big_uint_wf right ->
  big_uint_value right <= big_uint_value left ->
  wp (ecma_big_uint_sub left right) (big_uint_result (big_uint_value left - big_uint_value right)).
Proof.
  intros Hl Hr Hle. unfold ecma_big_uint_sub.
  pose proof (wf_length_le _ _ Hr Hl Hle) as Hlen. pose proof (wf_max _ Hl) as Hmax.
  rewrite (wf_size _ Hl). unfold big_uint_value in *.
  destruct (sub_loop _ _ 0) as [[ds carry] rest] eqn:E.
  apply sub_written in E as (done & rest' & -> & V & Hok & pre & Epre & Lpre);
    [| apply Hl | apply Hr | assumption ..].
  apply wp_create_then; [intros Hm | reflexivity | intros; lia].
  assert (Ls : digits_size (bigint_digits left) = digits_size ((ds ++ done) ++ rest'))
    by (unfold digits_size; rewrite Epre, !(zlength_app _ rest'); lia).
  set (written := ds ++ done) in *. clearbody written. rewrite Ls in *.
  destruct rest' as [|d rest'].
  - rewrite app_nil_r in *. destruct (Z.eqb_spec (last written 0) 0); cbn [negb].
    + now apply wp_fill_normalize.
    + wp_step. rewrite <- V. apply result_fill; try easy; [now apply digits_value_pos | now apply digits_value_lower].
  - wp_step. rewrite <- V. pose proof (wf_digits _ Hl) as Lok. pose proof (wf_last _ Hl) as Hwl.
    rewrite Epre in Lok, Hwl. apply Forall_app_inv in Lok as [_ Lok].
    assert (Hall : digits_ok (written ++ d :: rest')) by now apply Forall_app.
    assert (Hlast : last (written ++ d :: rest') 0 <> 0).
    { rewrite last_hd_rev, rev_app_distr in *. cbn [rev] in *. destruct (rev rest'); exact Hwl. }
    apply result_fill; try easy; [now apply digits_value_pos | now apply digits_value_lower].
Qed.

Lemma zlength_repeat {A} (x : A) n : 0 <= n -> zlength (repeat x (Z.to_nat n)) = n.
Proof. intros. unfold zlength. rewrite repeat_length. lia. Qed.

Lemma mul_value_lower left right : big_uint_wf left -> big_uint_wf right ->
  B32 ^ (zlength (bigint_digits left) + zlength (bigint_digits right) - 1 - 1)
    <= big_uint_value left * big_uint_value right
    < B32 ^ (zlength (bigint_digits left) + zlength (bigint_digits right)).
Proof.
  intros Hl Hr. destruct (wf_bounds _ Hl) as (_ & Lp & Ln & Llo & Lhi), (wf_bounds _ Hr) as (_ & Rp & Rn & Rlo & Rhi).
  apply zlength_pos in Ln, Rn.
  replace (zlength (bigint_digits left) + zlength (bigint_digits right) - 1 - 1)
    with ((zlength (bigint_digits left) - 1) + (zlength (bigint_digits right) - 1)) by lia.
  rewrite !Z.pow_add_r by lia. split.
  - apply Z.mul_le_mono_nonneg; try lia; apply Z.lt_le_incl, pow32_pos; lia.
  - apply Z.mul_lt_mono_nonneg; lia.
Qed.

(** The result of the schoolbook rows, cut into the block and the extra digit *)
Lemma mul_buffer left right n :
  big_uint_wf left -> big_uint_wf right ->
  n = zlength (bigint_digits left) + zlength (bigint_digits right) - 1 ->
  exists ds extra,
    mul_rows (bigint_digits left) (bigint_digits right) (repeat 0 (Z.to_nat n) ++ [0]) = ds ++ [extra]
    /\ digits_ok ds /\ is_u32 extra /\ zlength ds = n
    /\ digits_value ds + B32 ^ zlength ds * extra = big_uint_value left * big_uint_value right.
Proof.
  intros Hl Hr Hn. pose proof (mul_value_lower _ _ Hl Hr) as [_ Hhi].
  pose proof (zlength_pos _ (wf_nonempty _ Hl)). pose proof (zlength_pos _ (wf_nonempty _ Hr)).
  assert (Lbuf : zlength (repeat 0 (Z.to_nat n) ++ [0]) = n + 1) by (rewrite zlength_snoc, zlength_repeat; lia).
  assert (Vbuf : digits_value (repeat 0 (Z.to_nat n) ++ [0]) = 0)
    by (rewrite digits_value_snoc, digits_value_repeat0; lia).
  destruct (mul_rows_spec (bigint_digits left) (bigint_digits right) (wf_digits _ Hl) (wf_digits _ Hr)
              (repeat 0 (Z.to_nat n) ++ [0])) as (V & Hok & L).
  - apply Forall_app. split; [apply digits_ok_repeat0 | repeat constructor; lia].
  - rewrite Vbuf, Lbuf. unfold big_uint_value in *.
    replace (n + 1) with (zlength (bigint_digits left) + zlength (bigint_digits right)) by lia. lia.
  - set (buf := mul_rows _ _ _) in *. rewrite Vbuf, Z.add_0_l in V. rewrite Lbuf in L.
    assert (Hne : buf <> []) by (intros ->; rewrite (@zlength_nil Z) in L; lia).
    snoc_view buf ds extra Hne. exists ds, extra.
    rewrite digits_value_snoc in V. rewrite zlength_snoc in L. apply digits_ok_snoc in Hok as [Hok Hx].
    splits; try easy. lia.
Qed.

Lemma mul_sorted left right :
  big_uint_wf left -> big_uint_wf right ->
  wp (let result_size := u32 (ECMA_BIGINT_GET_SIZE left + ECMA_BIGINT_GET_SIZE right - sizeof_digit) in
      bind (ecma_bigint_create result_size) (fun r =>
        match r with
        | None => ret BIGINT_NULL
        | Some r =>
            let buffer := repeat 0 (Z.to_nat (result_size / sizeof_digit)) ++ [0] in
            let buffer := mul_rows (bigint_digits left) (bigint_digits right) buffer in
            let extra_space := last buffer 0 in
            let r' := set_digits r (removelast buffer) in
            if extra_space =? 0 then ret (BIGINT_PTR r') else ecma_big_uint_extend r' extra_space
        end))
    (big_uint_result (big_uint_value left * big_uint_value right)).
Proof.
  intros Hl Hr. cbv zeta. pose proof (wf_max _ Hl) as Ml. pose proof (wf_max _ Hr) as Mr.
  rewrite (wf_size _ Hl), (wf_size _ Hr).
  pose proof (zlength_pos _ (wf_nonempty _ Hl)). pose proof (zlength_pos _ (wf_nonempty _ Hr)).
  pose proof (mul_value_lower _ _ Hl Hr) as [Hlo _].
  pose proof (wf_value_pos _ Hl). pose proof (wf_value_pos _ Hr).
  set (n := zlength (bigint_digits left) + zlength (bigint_digits right) - 1) in *.
  replace (u32 _) with (4 * n)
    by (unfold digits_size, ECMA_BIGINT_MAX_SIZE in *; rewrite u32_small; [unfold n | unfold is_u32]; lia).
  replace (4 * n / 4) with n by (rewrite Z.mul_comm, Z.div_mul; lia).
  destruct (mul_buffer left right n Hl Hr eq_refl) as (ds & extra & -> & Hok & Hx & L & V).
  rewrite last_last, removelast_last. assert (Hs : digits_size ds = 4 * n) by (unfold digits_size; lia).
  apply wp_create_then; [intros Hm | reflexivity |].
  - destruct (Z.eqb_spec extra 0) as [->|Hnz].
    + wp_step. apply result_fill; try assumption; try nia. rewrite L. lia.
    + apply wp_fill_extend; assumption.
  - intros Hbig. unfold big_uint_too_large. rewrite max_size_digits in Hbig.
    eapply Z.le_trans; [| apply Hlo]. apply Z.pow_le_mono_r; lia.
Qed.

Lemma wp_big_uint_mul left right : big_uint_wf left -> big_uint_wf right ->
  wp (ecma_big_uint_mul left right) (big_uint_result (big_uint_value left * big_uint_value right)).
Proof.
  intros Hl Hr. unfold ecma_big_uint_mul.
  destruct (ECMA_BIGINT_GET_SIZE left <? ECMA_BIGINT_GET_SIZE right).
  - rewrite Z.mul_comm. now apply mul_sorted.
  - now apply mul_sorted.
Qed.

Lemma wf_head_size v n : big_uint_wf v -> 0 <= n <= 2 * ECMA_BIGINT_MAX_SIZE ->
  u32 (ECMA_BIGINT_GET_SIZE v + n) = digits_size (bigint_digits v) + n.
Proof.
  intros Hv Hn. rewrite (wf_size _ Hv). pose proof (wf_max _ Hv). unfold ECMA_BIGINT_MAX_SIZE, digits_size in *.
  pose proof (zlength_nonneg (bigint_digits v)). apply u32_small. unfold is_u32. lia.
Qed.

Lemma wp_big_uint_increase v : big_uint_wf v ->
  wp (ecma_big_uint_increase v) (big_uint_result (big_uint_value v + 1)).
Proof.
  intros Hv. unfold ecma_big_uint_increase. rewrite all_max_test by now apply wf_nonempty.
  destruct (wf_bounds _ Hv) as (Hok & Hpos & Hne & Hlo & Hhi). unfold big_uint_value in *.
  rewrite (wf_size _ Hv) at 2. pose proof (wf_head_size v 4 Hv ltac:(unfold ECMA_BIGINT_MAX_SIZE; lia)) as ->.
  set (ds := bigint_digits v) in *. destruct (increase_digits ds) as [ds' o] eqn:E.
  pose proof (increase_digits_flag ds) as Hf. rewrite E in Hf. cbn in Hf. subst o.
  apply increase_digits_spec in E as (V & Hok' & L); [| assumption].
  destruct (forallb _ ds) eqn:Ea; cbn [Z.b2z] in V.
  - apply wp_create_digits with (ds := map (fun _ => 0) ds ++ [1]); try reflexivity.
    + unfold digits_size. rewrite zlength_snoc, zlength_map. lia.
    + apply Forall_app. split; [rewrite map_const; apply digits_ok_repeat0 | repeat constructor; lia].
    + now rewrite last_last.
    + rewrite digits_value_snoc, zlength_map, map_const, digits_value_repeat0.
      apply all_max_value in Ea. lia.
  - apply wp_create_digits with (ds := ds'); try reflexivity; try assumption; try lia.
    + unfold digits_size. lia.
    + apply last_nonzero; [assumption | | rewrite L; lia].
      intros ->. apply zlength_pos in Hne. rewrite (@zlength_nil Z) in L. lia.
Qed.

Lemma wp_big_uint_decrease v : big_uint_wf v -> 1 < big_uint_value v ->
  wp (ecma_big_uint_decrease v) (big_uint_result (big_uint_value v - 1)).
Proof.
  intros Hv Hgt. unfold ecma_big_uint_decrease.
  destruct (wf_bounds _ Hv) as (Hok & Hpos & Hne & Hlo & Hhi). unfold big_uint_value in *.
  rewrite power_test by assumption.
  pose proof (zlength_pos _ Hne) as Hlen. pose proof (wf_max _ Hv) as Hm. rewrite (wf_size _ Hv).
  set (ds := bigint_digits v) in *. destruct (Z.eqb_spec (digits_value ds) (B32 ^ (zlength ds - 1))) as [Eq|Neq].
  - replace (u32 _) with (digits_size (removelast ds)).
    2: { unfold digits_size, ECMA_BIGINT_MAX_SIZE in *. rewrite zlength_removelast by assumption.
         rewrite u32_small; unfold is_u32; lia. }
    apply wp_create_digits with (ds := map (fun _ => DIGIT_MAX) (removelast ds)); try reflexivity.
    + unfold digits_size. now rewrite zlength_map.
    + apply Forall_map, Forall_forall. intros. unfold is_u32, DIGIT_MAX. lia.
    + apply last_nonzero; [apply Forall_map, Forall_forall; intros; unfold is_u32, DIGIT_MAX; lia | |].
      * intros Hnil. apply map_eq_nil in Hnil. apply (f_equal (@zlength Z)) in Hnil.
        rewrite zlength_removelast, (@zlength_nil Z) in Hnil by assumption.
        replace (zlength ds - 1) with 0 in Eq by lia. rewrite Z.pow_0_r in Eq. lia.
      * rewrite all_max_digits_value, zlength_map. pose proof (zlength_nonneg (removelast ds)).
        destruct (Z.eq_dec (zlength (removelast ds)) 0) as [E0|].
        { rewrite zlength_removelast in E0 by assumption. rewrite E0, Z.pow_0_r in Eq. lia. }
        pose proof (Z.pow_lt_mono_r B32 (zlength (removelast ds) - 1) (zlength (removelast ds))). lia.
    + rewrite all_max_digits_value, zlength_removelast by assumption. lia.
  - destruct (decrease_digits ds) as [done rest] eqn:Ed.
    apply decrease_digits_spec in Ed as (V & Hdok & Hdne & pre & Epre & Lp); [| assumption | lia].
    assert (Hall : digits_ok (done ++ rest)).
    { apply Forall_app. split; [assumption |]. rewrite Epre in Hok. now apply Forall_app_inv in Hok as [_ ?]. }
    assert (Hl : zlength (done ++ rest) = zlength ds) by (rewrite Epre, !zlength_app; lia).
    apply wp_create_digits with (ds := done ++ rest); try reflexivity; try assumption.
    + unfold digits_size. lia.
    + apply last_nonzero; [assumption | now destruct done | rewrite Hl, digits_value_app; lia].
    + rewrite digits_value_app. lia.
Qed.

(** The in-place multiplication: the block of [v] is consumed. *)
Lemma wp_big_uint_mul_digit v mul add :
  big_uint_wf v -> big_uint_fresh v -> 0 < mul < B32 -> is_u32 add ->
  wp (ecma_big_uint_mul_digit (Some v) mul add)
     (fun res held => big_uint_result (big_uint_value v * mul + add) res
                        (held + primitive_bytes (bigint_digits v))).
Proof.
  intros Hv Hf Hm Ha. unfold ecma_big_uint_mul_digit.
  destruct (wf_bounds _ Hv) as (Hok & Hpos & Hne & Hlo & Hhi). unfold big_uint_value in *.
  destruct (mul_digit_loop _ mul add) as [ds carry] eqn:E.
  apply mul_digit_loop_spec in E as (V & Hok' & Hc & L); [| unfold is_u32; lia | assumption ..].
  pose proof (wf_max _ Hv) as Hmax.
  assert (Hs : digits_size ds = digits_size (bigint_digits v)) by (unfold digits_size; lia).
  assert (Hf' : big_uint_fresh (set_digits v ds)) by (split; [apply Hf | cbn [set_digits bigint_sign_and_size bigint_digits]; rewrite Hs; apply Hf]).
  assert (Hpb : primitive_bytes ds = primitive_bytes (bigint_digits v)) by (unfold primitive_bytes; now rewrite Hs).
  destruct (Z.eqb_spec carry 0) as [->|Hnz].
  - wp_step. rewrite <- Hpb. apply (result_fresh (set_digits v ds)); try assumption; cbn [set_digits bigint_digits]; try lia.
    apply last_nonzero; [assumption | | rewrite L; unfold is_u32 in Ha; nia].
    intros ->. rewrite (@zlength_nil Z) in L. apply zlength_pos in Hne. lia.
  - apply wp_extend with (x := digits_value (bigint_digits v) * mul + add);
      cbn [set_digits bigint_digits]; try assumption; try lia.
    + now rewrite digits_value_snoc, L, V.
    + intros res held Hres. cbv beta. held_is held; [lia | assumption].
Qed.

Lemma wp_big_uint_mul_digit_null mul add : 0 < add < B32 ->
  wp (ecma_big_uint_mul_digit None mul add) (big_uint_result add).
Proof.
  intros Ha. unfold ecma_big_uint_mul_digit.
  apply wp_create_digits with (ds := [add]); try reflexivity; cbn; try lia.
  repeat constructor; unfold is_u32; lia.
Qed.
End Operations.

(** ** Properties *)

(** A value for the witnesses: digits behind a header with one reference *)
Definition big_uint_of (ds : list Z) : ecma_extended_primitive_t := mk_primitive 14 (digits_size ds) ds.

Ltac wf_of := split; [reflexivity | repeat (constructor; [unfold is_u32; lia |]); constructor | cbn; lia | vm_compute; discriminate].

Section Properties.
Context {HA : HeapAlloc}.

(** Sums: ecma_big_uint_add delivers the exact sum of two magnitudes as a
    well-formed value with one reference, for every carry chain, and holds
    exactly the bytes of that value; when it delivers NULL nothing is retained,
    and with memory available this means that the sum exceeds
    ECMA_BIGINT_MAX_SIZE. *)
Theorem ecma_big_uint_add_correct left right :
  big_uint_wf left -> big_uint_wf right ->
  wp (ecma_big_uint_add left right) (big_uint_result (big_uint_value left + big_uint_value right)).
Proof. apply wp_big_uint_add. Qed.

(** Differences: ecma_big_uint_sub delivers the exact difference of two magnitudes
    (the first not the smaller one), trimmed of its leading zero digits and as
    the zero pointer when they are equal, and neither leaks nor over-frees a
    byte on any path. *)
Theorem ecma_big_uint_sub_correct left right :
  big_uint_wf left -> big_uint_wf right -> big_uint_value right <= big_uint_value left ->
  wp (ecma_big_uint_sub left right) (big_uint_result (big_uint_value left - big_uint_value right)).
Proof. apply wp_big_uint_sub. Qed.

(** Ecma_big_uint_mul delivers the exact product of two magnitudes: no
    carry of the schoolbook rows overflows its digit, the digit beyond the
    block is the extra digit by which the block is extended, and the result is
    NULL only for lack of memory or beyond the size limit. *)
Theorem ecma_big_uint_mul_correct left right :
  big_uint_wf left -> big_uint_wf right ->
  wp (ecma_big_uint_mul left right) (big_uint_result (big_uint_value left * big_uint_value right)).
Proof. apply wp_big_uint_mul. Qed.

(** Ecma_big_uint_increase and ecma_big_uint_decrease deliver the next and
    the previous magnitude in a new value, also where the number of digits
    changes (all digits ones, a one followed by zero digits). *)
Theorem ecma_big_uint_increase_decrease_correct v :
  big_uint_wf v -> 1 < big_uint_value v ->
  wp (ecma_big_uint_increase v) (big_uint_result (big_uint_value v + 1))
  /\ wp (ecma_big_uint_decrease v) (big_uint_result (big_uint_value v - 1)).
Proof. intros Hv Hgt. split; [now apply wp_big_uint_increase | now apply wp_big_uint_decrease]. Qed.
End Properties.

(** Ecma_big_uint_compare orders magnitudes as numbers: -1, 0 or 1 for less,
    equal or greater. *)
Theorem ecma_big_uint_compare_correct left right : big_uint_wf left -> big_uint_wf right ->
  ecma_big_uint_compare left right =
    match big_uint_value left ?= big_uint_value right with Lt => -1 | Eq => 0 | Gt => 1 end.
Proof. apply big_uint_compare_value. Qed.

(** 2^64 - 1 plus 1: the carry leaves the last digit. *)
Lemma ecma_big_uint_add_witness :
  @wp (CounterHeap true) _ (@ecma_big_uint_add (CounterHeap true) (big_uint_of [DIGIT_MAX; DIGIT_MAX]) (big_uint_of [1]))
    (@big_uint_result (CounterHeap true) B64).
Proof. apply (@ecma_big_uint_add_correct (CounterHeap true)); unfold DIGIT_MAX; wf_of. Defined.

Lemma ecma_big_uint_sub_witness :
  @wp (CounterHeap true) _ (@ecma_big_uint_sub (CounterHeap true) (big_uint_of [0; 0; 1]) (big_uint_of [1]))
    (@big_uint_result (CounterHeap true) (B64 - 1)).
Proof. apply (@ecma_big_uint_sub_correct (CounterHeap true)); [wf_of | wf_of | vm_compute; discriminate]. Defined.

Lemma ecma_big_uint_mul_witness :
  @wp (CounterHeap true) _ (@ecma_big_uint_mul (CounterHeap true) (big_uint_of [DIGIT_MAX]) (big_uint_of [DIGIT_MAX]))
    (@big_uint_result (CounterHeap true) 18446744065119617025).
Proof. apply (@ecma_big_uint_mul_correct (CounterHeap true)); unfold DIGIT_MAX; wf_of. Defined.

Lemma ecma_big_uint_increase_decrease_witness :
  @wp (CounterHeap true) _ (@ecma_big_uint_increase (CounterHeap true) (big_uint_of [0; 1])) (@big_uint_result (CounterHeap true) (B32 + 1))
  /\ @wp (CounterHeap true) _ (@ecma_big_uint_decrease (CounterHeap true) (big_uint_of [0; 1])) (@big_uint_result (CounterHeap true) (B32 - 1)).
Proof. apply (@ecma_big_uint_increase_decrease_correct (CounterHeap true) (big_uint_of [0; 1])); [wf_of | reflexivity]. Defined.

Lemma ecma_big_uint_compare_witness : ecma_big_uint_compare (big_uint_of [7; 1]) (big_uint_of [8]) = 1.
Proof. apply (ecma_big_uint_compare_correct (big_uint_of [7; 1]) (big_uint_of [8])); wf_of. Defined.
