(* ===== verification/BigUintBits.v ===== *)
(** * Shifts, powers and bitwise operations on magnitudes

    The part of src/jjs-core/ecma/operations/ecma-big-uint.c from
    ecma_big_uint_shift_left to ecma_big_uint_bitwise_op.  Numbers are handled
    as in BigUint; the bitwise operations take the "subtract one from an
    operand" and "add one to the result" options with which ecma-bigint.c
    builds the operations on two's complement numbers. *)
From Stdlib Require Import ZArith List Lia Bool.
From S2P Require Import Prelude HeapIface BigUint.
Import ListNotations.
#[local] Open Scope Z_scope.
#[local] Open Scope heap_scope.

Definition ECMA_BIGINT_DIGIT_SHIFT : Z := 5.

(** ** Shifts *)

(** The digits of value << shift_left, and the bits that leave the last one *)
Fixpoint shift_left_loop (ds : list Z) (shift_left carry : Z) : list Z * Z :=
  match ds with
  | [] => ([], carry)
  | value :: rest =>
      let (rest', carry') :=
        shift_left_loop rest shift_left (Z.shiftr value (32 - shift_left)) in
      (Z.lor (u32 (Z.shiftl value shift_left)) carry :: rest', carry')
  end.

(** The digits of value >> shift_right, from the most significant one down to
    the first, in front of [result] *)
Fixpoint shift_right_loop (rev_digits : list Z) (shift_right carry : Z) (result : list Z) : list Z :=
  match rev_digits with
  | [] => result
  | value :: rest =>
      shift_right_loop rest shift_right (u32 (Z.shiftl value (32 - shift_right)))
        (Z.lor (Z.shiftr value shift_right) carry :: result)
  end.

(** ** Options of ecma_big_uint_bitwise_op *)

Definition ECMA_BIG_UINT_BITWISE_AND : Z := 0.
Definition ECMA_BIG_UINT_BITWISE_OR : Z := 1.
Definition ECMA_BIG_UINT_BITWISE_XOR : Z := 2.
Definition ECMA_BIG_UINT_BITWISE_AND_NOT : Z := 3.
Definition ECMA_BIG_UINT_BITWISE_DECREASE_LEFT : Z := 16.
Definition ECMA_BIG_UINT_BITWISE_DECREASE_RIGHT : Z := 32.
Definition ECMA_BIG_UINT_BITWISE_INCREASE_RESULT : Z := 64.
Definition ECMA_BIG_UINT_BITWISE_DECREASE_BOTH : Z :=
  Z.lor ECMA_BIG_UINT_BITWISE_DECREASE_LEFT ECMA_BIG_UINT_BITWISE_DECREASE_RIGHT.

Definition ECMA_BIGINT_BITWISE_GET_OPERATION_TYPE (operation_and_options : Z) : Z :=
  Z.land operation_and_options 15.

Definition has_option (operation_and_options option : Z) : bool :=
  negb (Z.land operation_and_options option =? 0).

(** The do-while loops over both operands without borrows *)
Fixpoint bitwise_loop (f : Z -> Z -> Z) (left right : list Z) {struct right} : list Z * list Z :=
  match right, left with
  | r :: right', l :: left' =>
      let (ds, rest) := bitwise_loop f left' right' in (f l r :: ds, rest)
  | _, _ => ([], left)
  end.

(** The switch of the loop with borrows *)
Definition bitwise_digit (operation_type left right : Z) : Z :=
  if operation_type =? ECMA_BIG_UINT_BITWISE_AND then Z.land left right
  else if operation_type =? ECMA_BIG_UINT_BITWISE_OR then Z.lor left right
  else if operation_type =? ECMA_BIG_UINT_BITWISE_XOR then Z.lxor left right
  else Z.land left (u32 (Z.lnot right)).

(** A digit of an operand, decreased while its borrow is pending *)
Definition borrow_step (digit carry : Z) : Z * Z :=
  let digit' := u32 (digit - carry) in
  (digit', if negb (digit' =? DIGIT_MAX) then 0 else carry).

Fixpoint bitwise_borrow_loop (operation_type : Z) (left right : list Z)
    (left_carry right_carry : Z) {struct right} : list Z * Z * list Z :=
  match right, left with
  | r :: right', l :: left' =>
      let (l', left_carry') := borrow_step l left_carry in
      let (r', right_carry') := borrow_step r right_carry in
      let '(ds, carry, rest) :=
        bitwise_borrow_loop operation_type left' right' left_carry' right_carry' in
      (bitwise_digit operation_type l' r' :: ds, carry, rest)
  | _, _ => ([], left_carry, left)
  end.

(** Which object result_p of ecma_big_uint_pow points to: none, the left
    operand, the object of square_p (which then has two references), or an
    object of its own. *)
Inductive pow_result :=
| POW_NULL
| POW_LEFT
| POW_SQUARE
| POW_OWN (result_p : ecma_extended_primitive_t).

(** square_p: the left operand, or an object owned by the loop *)
Inductive pow_square :=
| SQUARE_LEFT
| SQUARE_OWN (square_p : ecma_extended_primitive_t).

Section Operations.
Context {HA : HeapAlloc}.

Definition ecma_big_uint_shift_left (left : ecma_extended_primitive_t) (right_value : Z) : M bigint_ptr :=
  let left_size := ECMA_BIGINT_GET_SIZE left in
  let zero_size := u32 (Z.shiftr right_value ECMA_BIGINT_DIGIT_SHIFT * sizeof_digit) in
  let result_size := u32 (left_size + zero_size) in
  let shift_left := Z.land right_value (Z.shiftl 1 ECMA_BIGINT_DIGIT_SHIFT - 1) in
  let shift_right := Z.shiftl 1 ECMA_BIGINT_DIGIT_SHIFT - shift_left in
  let result_size :=
    if (0 <? shift_left) && negb (Z.shiftr (ECMA_BIGINT_GET_LAST_DIGIT left) shift_right =? 0)
    then u32 (result_size + sizeof_digit) else result_size in
  if ECMA_BIGINT_MAX_SIZE <? result_size then ret BIGINT_NULL
  else
    r <- ecma_bigint_create result_size;;
    match r with
    | None => ret BIGINT_NULL
    | Some r =>
        let zeros := repeat 0 (Z.to_nat (zero_size / sizeof_digit)) in
        if shift_left =? 0 then ret (BIGINT_PTR (set_digits r (zeros ++ bigint_digits left)))
        else
          let (ds, carry) := shift_left_loop (bigint_digits left) shift_left 0 in
          ret (BIGINT_PTR (set_digits r (zeros ++ ds ++ if 0 <? carry then [carry] else [])))
    end.

Definition ecma_big_uint_shift_right (left : ecma_extended_primitive_t) (right_value : Z)
    (increase_result : bool) : M bigint_ptr :=
  let left_size := ECMA_BIGINT_GET_SIZE left in
  let crop_size := u32 (Z.shiftr right_value ECMA_BIGINT_DIGIT_SHIFT * sizeof_digit) in
  let shift_right := Z.land right_value (Z.shiftl 1 ECMA_BIGINT_DIGIT_SHIFT - 1) in
  let shift_left := Z.shiftl 1 ECMA_BIGINT_DIGIT_SHIFT - shift_right in
  let last_digit := ECMA_BIGINT_GET_LAST_DIGIT left in
  (* left_p: the digits below left_size *)
  let '(carry, left_size, left_p) :=
    if (0 <? shift_right) && (Z.shiftr last_digit shift_right =? 0)
    then (u32 (Z.shiftl last_digit shift_left), u32 (left_size - sizeof_digit), removelast (bigint_digits left))
    else (0, left_size, bigint_digits left) in
  if left_size <=? crop_size then
    if negb increase_result then ret BIGINT_POINTER_TO_ZERO
    else
      r <- ecma_bigint_create sizeof_digit;;
      match r with
      | None => ret BIGINT_NULL
      | Some r => ret (BIGINT_PTR (set_digits r [1]))
      end
  else
    let crop := Z.to_nat (crop_size / sizeof_digit) in
    let increase_result :=
      if increase_result
         && ((shift_right =? 0) || (u32 (Z.shiftl (nth crop left_p 0) shift_left) =? 0))
         && forallb (fun d => d =? 0) (firstn crop left_p)
      then false else increase_result in
    let size := u32 (left_size - crop_size) in
    r <- ecma_bigint_create size;;
    match r with
    | None => ret BIGINT_NULL
    | Some r =>
        let r :=
          if shift_right =? 0 then set_digits r (skipn crop left_p)
          else set_digits r (shift_right_loop (rev (skipn crop left_p)) shift_right carry []) in
        if negb increase_result then ret (BIGINT_PTR r) else ecma_big_uint_increase_result r
    end.

(** ecma_ref_extended_primitive, below its limit *)
Definition ecma_ref_extended_primitive (v : ecma_extended_primitive_t) : ecma_extended_primitive_t :=
  mk_primitive (u32 (refs_and_type v + ECMA_EXTENDED_PRIMITIVE_REF_ONE))
    (bigint_sign_and_size v) (bigint_digits v).

(** Drop the loop's reference to square_p.  When result_p is the same object,
    it keeps the object alive. *)
Definition pow_deref_square (result : pow_result) (square : pow_square) : M pow_result :=
  match square with
  | SQUARE_LEFT => ret result
  | SQUARE_OWN square_p =>
      left_over <- ecma_deref_bigint square_p;;
      ret (match result, left_over with
           | POW_SQUARE, Some v => POW_OWN v
           | _, _ => result
           end)
  end.

(** Drop the loop's reference to result_p, unless it is NULL or the operand. *)
Definition pow_deref_result (result : pow_result) (square : pow_square) : M pow_square :=
  match result, square with
  | POW_OWN result_p, _ => ecma_deref_bigint result_p;;; ret square
  | POW_SQUARE, SQUARE_OWN square_p =>
      left_over <- ecma_deref_bigint square_p;;
      ret (match left_over with Some v => SQUARE_OWN v | None => square end)
  | _, _ => ret square
  end.

Definition pow_result_ptr (left : ecma_extended_primitive_t) (result : pow_result) : bigint_ptr :=
  match result with
  | POW_LEFT => BIGINT_PTR left
  | POW_OWN v => BIGINT_PTR v
  | POW_SQUARE | POW_NULL => BIGINT_NULL
  end.

(** The value a pointer of the loop points to *)
Definition pow_square_value (left : ecma_extended_primitive_t) (square : pow_square) :=
  match square with SQUARE_LEFT => left | SQUARE_OWN v => v end.

(** The branch of an odd exponent: multiply the result by the new square, or
    share the square when there is no result yet. *)
Definition pow_multiply (left : ecma_extended_primitive_t) (result : pow_result)
    (square_p : ecma_extended_primitive_t) : M (pow_result * pow_square) :=
  match result with
  | POW_NULL => ret (POW_SQUARE, SQUARE_OWN (ecma_ref_extended_primitive square_p))
  | _ =>
      let result_p := match result with POW_OWN v => v | _ => left end in
      new_result_p <- ecma_big_uint_mul square_p result_p;;
      square <- pow_deref_result result (SQUARE_OWN square_p);;
      ret (match new_result_p with BIGINT_PTR v => POW_OWN v | _ => POW_NULL end, square)
  end.

Fixpoint pow_loop (fuel : nat) (left : ecma_extended_primitive_t) (right_value : Z)
    (result : pow_result) (square : pow_square) : M bigint_ptr :=
  match fuel with
  | O => ret BIGINT_NULL
  | S fuel' =>
      let square_p := pow_square_value left square in
      new_square_p <- ecma_big_uint_mul square_p square_p;;
      match new_square_p with
      | BIGINT_NULL | BIGINT_POINTER_TO_ZERO =>
          square <- pow_deref_result result square;;
          pow_deref_square POW_NULL square;;;
          ret BIGINT_NULL
      | BIGINT_PTR square_p =>
          result <- pow_deref_square result square;;
          let square := SQUARE_OWN square_p in
          let right_value := Z.shiftr right_value 1 in
          if ECMA_BIGINT_NUMBER_IS_ODD right_value then
            result_square <- pow_multiply left result square_p;;
            let (result, square) := result_square : pow_result * pow_square in
            if (match result with POW_NULL => true | _ => false end) || (right_value =? 1)
            then result <- pow_deref_square result square;; ret (pow_result_ptr left result)
            else pow_loop fuel' left right_value result square
          else pow_loop fuel' left right_value result square
      end
  end.

(** A 32-bit exponent is exhausted after 32 halvings. *)
Definition ecma_big_uint_pow (left : ecma_extended_primitive_t) (right_value : Z) : M bigint_ptr :=
  pow_loop 32 left right_value
    (if ECMA_BIGINT_NUMBER_IS_ODD right_value then POW_LEFT else POW_NULL) SQUARE_LEFT.

(** The sizes, operands and options after the first switch *)
Definition bitwise_operands (operation_and_options : Z) (left right : ecma_extended_primitive_t) :=
  let left_size := ECMA_BIGINT_GET_SIZE left in
  let right_size := ECMA_BIGINT_GET_SIZE right in
  let operation_type := ECMA_BIGINT_BITWISE_GET_OPERATION_TYPE operation_and_options in
  if (operation_type =? ECMA_BIG_UINT_BITWISE_AND) && (right_size <? left_size)
  then (left, right, right_size, right_size, operation_and_options)
  else if (operation_type =? ECMA_BIG_UINT_BITWISE_AND)
          || (operation_type =? ECMA_BIG_UINT_BITWISE_AND_NOT)
  then (left, right, left_size, (if left_size <? right_size then left_size else right_size),
        operation_and_options)
  else if right_size <=? left_size then (left, right, left_size, right_size, operation_and_options)
  else
    let decrease_opts := Z.land operation_and_options ECMA_BIG_UINT_BITWISE_DECREASE_BOTH in
    (right, left, right_size, left_size,
     if (ECMA_BIG_UINT_BITWISE_DECREASE_LEFT <=? decrease_opts)
        && (decrease_opts <=? ECMA_BIG_UINT_BITWISE_DECREASE_RIGHT)
     then Z.lxor operation_and_options ECMA_BIG_UINT_BITWISE_DECREASE_BOTH
     else operation_and_options).

(** result_p[-1] == 0 at the end of the result *)
Definition normalize_if_zero (r : ecma_extended_primitive_t) : M bigint_ptr :=
  if last (bigint_digits r) 0 =? 0 then ecma_big_uint_normalize_result r else ret (BIGINT_PTR r).

Definition ecma_big_uint_bitwise_op (operation_and_options : Z)
    (left right : ecma_extended_primitive_t) : M bigint_ptr :=
  let '(lhs, rhs, left_size, right_size, options) := bitwise_operands operation_and_options left right in
  let operation_type := ECMA_BIGINT_BITWISE_GET_OPERATION_TYPE operation_and_options in
  r <- ecma_bigint_create left_size;;
  match r with
  | None => ret BIGINT_NULL
  | Some r =>
      let left_p := bigint_digits lhs in
      let right_p := firstn (Z.to_nat (right_size / sizeof_digit)) (bigint_digits rhs) in
      let copied rest := firstn (Z.to_nat ((left_size - right_size) / sizeof_digit)) rest in
      if negb (has_option options ECMA_BIG_UINT_BITWISE_DECREASE_BOTH) then
        if operation_type =? ECMA_BIG_UINT_BITWISE_AND then
          normalize_if_zero (set_digits r (fst (bitwise_loop Z.land left_p right_p)))
        else if operation_type =? ECMA_BIG_UINT_BITWISE_OR then
          let (ds, rest) := bitwise_loop Z.lor left_p right_p in
          ret (BIGINT_PTR (set_digits r (ds ++ copied rest)))
        else
          let (ds, rest) := bitwise_loop Z.lxor left_p right_p in
          if right_size <? left_size then ret (BIGINT_PTR (set_digits r (ds ++ copied rest)))
          else normalize_if_zero (set_digits r ds)
      else
        let left_carry := if has_option options ECMA_BIG_UINT_BITWISE_DECREASE_LEFT then 1 else 0 in
        let right_carry := if has_option options ECMA_BIG_UINT_BITWISE_DECREASE_RIGHT then 1 else 0 in
        let '(ds, left_carry, rest) :=
          bitwise_borrow_loop operation_type left_p right_p left_carry right_carry in
        let '(ds, rest) :=
          if negb (operation_type =? ECMA_BIG_UINT_BITWISE_AND) then
            let rest := copied rest in
            if 0 <? left_carry then
              let (done, rest') := decrease_digits rest in (ds ++ done, rest')
            else (ds, rest)
          else (ds, []) in
        let r := set_digits r (ds ++ rest) in
        if has_option options ECMA_BIG_UINT_BITWISE_INCREASE_RESULT
        then ecma_big_uint_increase_result r
        else match rest with
             | _ :: _ => ret (BIGINT_PTR r)
             | [] => normalize_if_zero r
             end
  end.
End Operations.

(** ** Digit shifts *)

Lemma pow2_split s : 0 <= s <= 32 -> 2 ^ (32 - s) * 2 ^ s = B32.
Proof. intros. rewrite <- Z.pow_add_r by lia. now replace (32 - s + s) with 32 by lia. Qed.

Lemma pow2_pos s : 0 <= s -> 0 < 2 ^ s.
Proof. intros. apply Z.pow_pos_nonneg; lia. Qed.

Lemma u32_shiftl v s : 0 <= s <= 32 -> u32 (Z.shiftl v s) = (v mod 2 ^ (32 - s)) * 2 ^ s.
Proof.
  intros Hs. unfold u32. rewrite Z.shiftl_mul_pow2, <- (pow2_split s Hs) by lia.
  pose proof (pow2_pos s). pose proof (pow2_pos (32 - s)). rewrite Z.mul_mod_distr_r; lia.
Qed.

Lemma shift_left_digit v s carry : is_u32 v -> 0 < s < 32 -> 0 <= carry < 2 ^ s ->
  let low := Z.lor (u32 (Z.shiftl v s)) carry in
  let high := Z.shiftr v (32 - s) in
  low + B32 * high = v * 2 ^ s + carry /\ is_u32 low /\ 0 <= high < 2 ^ s.
Proof.
  intros Hv Hs Hc. cbv zeta. rewrite u32_shiftl, lor_mul_low, Z.shiftr_div_pow2 by lia.
  pose proof (pow2_split s ltac:(lia)) as E. pose proof (pow2_pos s). pose proof (pow2_pos (32 - s)).
  set (a := 2 ^ s) in *. set (b := 2 ^ (32 - s)) in *. unfold is_u32 in *.
  pose proof (Z.div_mod v b). pose proof (Z.mod_pos_bound v b).
  assert (v / b < a) by (apply Z.div_lt_upper_bound; lia). pose proof (Z.div_pos v b).
  splits; nia.
Qed.

Lemma shift_left_loop_spec s : 0 < s < 32 -> forall ds, digits_ok ds -> forall carry ds' carry',
  0 <= carry < 2 ^ s -> shift_left_loop ds s carry = (ds', carry') ->
  digits_value ds' + B32 ^ zlength ds * carry' = digits_value ds * 2 ^ s + carry
  /\ digits_ok ds' /\ zlength ds' = zlength ds
  /\ (ds <> [] -> carry' = Z.shiftr (last ds 0) (32 - s)).
Proof.
  intros Hs ds. induction 1 as [|v ds Hv Hok IH]; intros carry ds' carry' Hc; cbn [shift_left_loop].
  { intro_pair. cbn [digits_value]. rewrite (@zlength_nil Z). splits; [lia | constructor | reflexivity | easy]. }
  destruct (shift_left_digit v s carry Hv Hs Hc) as (V & Hl & Hh).
  destruct (shift_left_loop ds s (Z.shiftr v (32 - s))) as [rest c'] eqn:E. intro_pair.
  apply IH in E as (V' & Hok' & L & Hlast); [| assumption].
  cbn [digits_value]. rewrite !zlength_cons, pow32_succ by apply zlength_nonneg.
  set (low := Z.lor _ carry) in *. clearbody low. set (high := Z.shiftr v (32 - s)) in *.
  splits; [lia | now apply Forall_cons | lia |].
  intros _. destruct ds as [|d ds]; [| now apply Hlast].
  cbn [last]. destruct rest as [|d rest]; [| rewrite zlength_cons, (@zlength_nil Z) in L; pose proof (zlength_nonneg rest); lia].
  cbn [digits_value] in V'. rewrite (@zlength_nil Z) in V'. lia.
Qed.

Lemma shift_right_digit v s c : is_u32 v -> 0 < s < 32 -> 0 <= c < 2 ^ s ->
  let d := Z.lor (Z.shiftr v s) (c * 2 ^ (32 - s)) in
  let c' := v mod 2 ^ s in
  v + B32 * c = d * 2 ^ s + c' /\ is_u32 d /\ 0 <= c' < 2 ^ s
  /\ u32 (Z.shiftl v (32 - s)) = c' * 2 ^ (32 - s).
Proof.
  intros Hv Hs Hc. cbv zeta. pose proof (pow2_split s ltac:(lia)) as E.
  pose proof (pow2_pos s). pose proof (pow2_pos (32 - s)).
  rewrite u32_shiftl by lia. replace (32 - (32 - s)) with s by lia.
  rewrite Z.shiftr_div_pow2 by lia. unfold is_u32 in *.
  assert (v / 2 ^ s < 2 ^ (32 - s)) by (apply Z.div_lt_upper_bound; lia).
  pose proof (Z.div_pos v (2 ^ s)). rewrite Z.lor_comm, lor_mul_low by lia.
  pose proof (Z.div_mod v (2 ^ s)). pose proof (Z.mod_pos_bound v (2 ^ s)).
  set (a := 2 ^ s) in *. set (b := 2 ^ (32 - s)) in *. splits; nia.
Qed.

Lemma shift_right_loop_spec s : 0 < s < 32 -> forall rds, digits_ok (rev rds) -> forall c result,
  0 <= c < 2 ^ s ->
  exists ds, shift_right_loop rds s (c * 2 ^ (32 - s)) result = ds ++ result
    /\ digits_value ds = (digits_value (rev rds) + B32 ^ zlength rds * c) / 2 ^ s
    /\ digits_ok ds /\ zlength ds = zlength rds.
Proof.
  intros Hs rds. pose proof (pow2_pos s) as Hp.
  induction rds as [|v rds IH]; intros Hok c result Hc; cbn [shift_right_loop rev].
  { exists []. splits; [reflexivity | | constructor | reflexivity].
    cbn [digits_value rev]. rewrite (@zlength_nil Z), Z.div_small; lia. }
  cbn [rev] in Hok. apply digits_ok_snoc in Hok as [Hok Hv].
  destruct (shift_right_digit v s c Hv Hs Hc) as (V & Hd & Hc' & ->).
  set (d := Z.lor _ _) in *. clearbody d. set (c' := v mod 2 ^ s) in *. clearbody c'.
  destruct (IH Hok c' (d :: result) Hc') as (ds & -> & Vd & Hok' & L).
  exists (ds ++ [d]). rewrite <- app_assoc. splits; [reflexivity | | | rewrite zlength_snoc, zlength_cons; lia].
  - rewrite !digits_value_snoc, Vd, L, zlength_cons, pow32_succ by apply zlength_nonneg.
    replace (zlength (rev rds)) with (zlength rds) by (unfold zlength; now rewrite length_rev).
    set (p := B32 ^ zlength rds) in *. set (x := digits_value (rev rds)) in *.
    replace (x + p * v + B32 * p * c) with (x + p * c' + (p * d) * 2 ^ s) by nia.
    rewrite Z.div_add by lia. lia.
  - apply Forall_app. split; [assumption | now constructor].
Qed.

(** ** Correctness of the shifts *)

Lemma digit_shift_split n : 0 <= n ->
  Z.shiftr n ECMA_BIGINT_DIGIT_SHIFT = n / 32
  /\ Z.land n (Z.shiftl 1 ECMA_BIGINT_DIGIT_SHIFT - 1) = n mod 32
  /\ 0 <= n mod 32 < 32 /\ 2 ^ n = B32 ^ (n / 32) * 2 ^ (n mod 32).
Proof.
  intros Hn. pose proof (Z.mod_pos_bound n 32 ltac:(lia)). pose proof (Z.div_pos n 32 Hn ltac:(lia)).
  splits; try lia.
  - unfold ECMA_BIGINT_DIGIT_SHIFT. now rewrite Z.shiftr_div_pow2 by lia.
  - change 32 with (2 ^ 5); apply land_ones'; [reflexivity | lia].
  - change B32 with (2 ^ 32). rewrite <- Z.pow_mul_r, <- Z.pow_add_r by lia.
    f_equal. pose proof (Z.div_mod n 32). lia.
Qed.

Lemma zero_size_small n : is_u32 n -> u32 (n / 32 * sizeof_digit) = 4 * (n / 32) /\ 0 <= n / 32 <= 134217727.
Proof.
  unfold is_u32. intros Hn. pose proof (Z.div_pos n 32). pose proof (Z.div_lt_upper_bound n 32 134217728).
  split; [rewrite u32_small; unfold is_u32; lia | lia].
Qed.

Lemma last_app_nonempty {A} (a b : list A) d : b <> [] -> last (a ++ b) d = last b d.
Proof. intros H. destruct (exists_last H) as (l & x & ->). now rewrite app_assoc, !last_last. Qed.

Lemma digits_value_zeros_app n ds : 0 <= n ->
  digits_value (repeat 0 (Z.to_nat n) ++ ds) = B32 ^ n * digits_value ds.
Proof. intros. rewrite digits_value_app, digits_value_repeat0, zlength_repeat by lia. lia. Qed.

(** The digits that ecma_big_uint_shift_left stores above the zero digits, and
    the size it computes for them *)
Lemma shifted_digits ds s ds' carry :
  digits_ok ds -> last ds 0 <> 0 -> 0 < s < 32 -> shift_left_loop ds s 0 = (ds', carry) ->
  let all := ds' ++ (if 0 <? carry then [carry] else []) in
  digits_value all = digits_value ds * 2 ^ s /\ digits_ok all /\ last all 0 <> 0
  /\ zlength all = zlength ds + (if negb (Z.shiftr (last ds 0) (32 - s) =? 0) then 1 else 0).
Proof.
  intros Hok Hl Hs E. cbv zeta. pose proof (pow2_pos s ltac:(lia)) as Hp.
  pose proof (last_nonzero_nonempty _ Hl) as Hne.
  apply shift_left_loop_spec in E as (V & Hok' & L & Hc); try assumption; [| lia].
  rewrite <- (Hc Hne). assert (Hc0 : 0 <= carry < B32).
  { rewrite Hc, Z.shiftr_div_pow2 by (assumption || lia).
    assert (is_u32 (last ds 0)) as Hu.
    { destruct (exists_last Hne) as (l & x & ->). rewrite last_last. now apply digits_ok_snoc in Hok as [_ ?]. }
    pose proof (pow2_pos (32 - s)). unfold is_u32 in Hu. split; [apply Z.div_pos; lia |].
    apply Z.div_lt_upper_bound; nia. }
  destruct (Z.ltb_spec 0 carry), (Z.eqb_spec carry 0); try lia; cbn [negb].
  - rewrite digits_value_snoc, last_last, zlength_snoc, L.
    splits; try lia. apply Forall_app. split; [assumption | repeat constructor; lia].
  - rewrite app_nil_r. subst carry. splits; try lia; [assumption |].
    apply last_nonzero; [assumption | intros ->; rewrite (@zlength_nil Z) in L; apply zlength_pos in Hne; lia |].
    pose proof (digits_value_lower _ Hok Hl). rewrite L. nia.
Qed.

Section Shifts.
Context {HA : HeapAlloc}.

(** A size above the limit is refused before the block is requested. *)
Lemma wp_guarded_create size x ds (k : option ecma_extended_primitive_t -> M bigint_ptr) :
  digits_size ds = size -> digits_ok ds -> last ds 0 <> 0 -> digits_value ds = x ->
  (k None = ret BIGINT_NULL) -> (forall r, k (Some r) = ret (BIGINT_PTR (set_digits r ds))) ->
  wp (if ECMA_BIGINT_MAX_SIZE <? size then ret BIGINT_NULL else bind (ecma_bigint_create size) k)
     (big_uint_result x).
Proof.
  intros Hs Hok Hl Hx HN HS. destruct (Z.ltb_spec ECMA_BIGINT_MAX_SIZE size).
  - wp_step. cbn. split; [reflexivity |]. intros _. rewrite <- Hx. apply too_large_size; [assumption .. | lia].
  - now apply wp_create_digits with (ds := ds).
Qed.

Lemma wp_big_uint_shift_left v n : big_uint_wf v -> 0 < n < B32 ->
  wp (ecma_big_uint_shift_left v n) (big_uint_result (big_uint_value v * 2 ^ n)).
Proof.
  intros Hv Hn. unfold ecma_big_uint_shift_left.
  destruct (digit_shift_split n ltac:(lia)) as (-> & -> & Hs & ->).
  destruct (zero_size_small n) as [-> Hz]; [unfold is_u32; lia |].
  rewrite (wf_size _ Hv). pose proof (wf_max _ Hv) as Hm. change (Z.shiftl 1 ECMA_BIGINT_DIGIT_SHIFT) with 32.
  unfold ECMA_BIGINT_GET_LAST_DIGIT, big_uint_value.
  pose proof (zlength_nonneg (bigint_digits v)). set (z := n / 32) in *. set (s := n mod 32) in *. clearbody z s.
  assert (Hsize : u32 (digits_size (bigint_digits v) + 4 * z) = digits_size (bigint_digits v) + 4 * z).
  { apply u32_small. unfold is_u32, digits_size, ECMA_BIGINT_MAX_SIZE in *. lia. }
  rewrite Hsize. replace (4 * z / 4) with z by (rewrite Z.mul_comm, Z.div_mul; lia).
  pose proof (wf_digits _ Hv) as Hok. pose proof (wf_last _ Hv) as Hl.
  destruct (Z.ltb_spec 0 s) as [Hs0|Hs0]; cbn [andb].
  - destruct (shift_left_loop (bigint_digits v) s 0) as [ds carry] eqn:E.
    apply shifted_digits in E as (V & Hall & Hlast & L); try assumption; [| lia].
    destruct (Z.eqb_spec s 0); [lia |]. set (all := ds ++ _) in *.
    apply wp_guarded_create with (ds := repeat 0 (Z.to_nat z) ++ all); try reflexivity.
    + unfold digits_size. rewrite zlength_app, zlength_repeat, L by lia.
      destruct (Z.shiftr _ _ =? 0); cbn [negb]; [unfold digits_size; lia |].
      rewrite u32_small; unfold is_u32, digits_size, ECMA_BIGINT_MAX_SIZE in *; lia.
    + apply Forall_app. split; [apply digits_ok_repeat0 | assumption].
    + rewrite last_app_nonempty by now apply last_nonzero_nonempty. assumption.
    + rewrite digits_value_zeros_app, V by lia. lia.
  - replace s with 0 by lia. rewrite Z.pow_0_r, Z.mul_1_r.
    apply wp_guarded_create with (ds := repeat 0 (Z.to_nat z) ++ bigint_digits v); try reflexivity.
    + unfold digits_size. rewrite zlength_app, zlength_repeat by lia. lia.
    + apply Forall_app. split; [apply digits_ok_repeat0 | assumption].
    + now rewrite last_app_nonempty by now apply last_nonzero_nonempty.
    + rewrite digits_value_zeros_app by lia. lia.
Qed.
End Shifts.

(** The operand of the right shift: a last digit that is shifted out entirely
    only contributes its bits [c] to the digit below it. *)
Lemma shift_right_operand ds s carry left_size left_p :
  digits_ok ds -> last ds 0 <> 0 -> digits_size ds <= ECMA_BIGINT_MAX_SIZE -> 0 <= s < 32 ->
  (if (0 <? s) && (Z.shiftr (last ds 0) s =? 0)
   then (u32 (Z.shiftl (last ds 0) (32 - s)), u32 (digits_size ds - sizeof_digit), removelast ds)
   else (0, digits_size ds, ds)) = (carry, left_size, left_p) ->
  left_size = digits_size left_p /\ digits_ok left_p /\ zlength left_p <= zlength ds /\ exists c,
    carry = c * 2 ^ (32 - s) /\ 0 <= c < 2 ^ s
    /\ digits_value ds = digits_value left_p + B32 ^ zlength left_p * c
    /\ (left_p <> [] -> B32 ^ (zlength left_p - 1) * 2 ^ s <= digits_value ds).
Proof.
  intros Hok Hl Hmax Hs. pose proof (pow2_pos s ltac:(lia)) as Hp.
  snoc_view ds low d (last_nonzero_nonempty _ Hl). rewrite last_last, removelast_last in *.
  pose proof (digits_ok_snoc _ _ Hok) as [Hlow Hd]. pose proof (digits_value_bound _ Hlow) as Hb.
  pose proof (pow32_pos _ (zlength_nonneg low)) as Hpl.
  assert (Hdiv : 0 <= Z.shiftr d s) by (apply Z.shiftr_nonneg; apply Hd).
  pose proof (pow2_split s ltac:(lia)) as Hsplit. pose proof (pow2_pos (32 - s) ltac:(lia)) as Hp'.
  assert (Hge : d / 2 ^ s <> 0 -> 2 ^ s <= d).
  { intros H. apply Z.nlt_ge. intros Hlt. apply H, Z.div_small. unfold is_u32 in Hd. lia. }
  destruct (Z.ltb_spec 0 s), (Z.eqb_spec (Z.shiftr d s) 0) as [E|E]; cbn [andb];
    intro_triple; rewrite Z.shiftr_div_pow2 in E, Hdiv by lia.
  - apply Z.div_small_iff in E; [| lia]. unfold is_u32 in Hd.
    split; [| split; [assumption | split; [rewrite zlength_snoc; lia |]]].
    { unfold digits_size, ECMA_BIGINT_MAX_SIZE in *. rewrite zlength_snoc in *. pose proof (zlength_nonneg low).
      rewrite u32_small; unfold is_u32; lia. }
    exists d. rewrite u32_shiftl, digits_value_snoc by lia. replace (32 - (32 - s)) with s by lia.
    rewrite Z.mod_small by lia. splits; try lia.
    intros Hne. apply zlength_pos in Hne.
    replace (zlength low) with (1 + (zlength low - 1)) in * by lia. rewrite pow32_succ in * by lia.
    replace (1 + (zlength low - 1) - 1) with (zlength low - 1) by lia. nia.
  - split; [reflexivity | split; [assumption | split; [lia |]]]. exists 0. splits; try lia.
    intros _. rewrite zlength_snoc, Z.add_simpl_r, digits_value_snoc. specialize (Hge E). nia.
  - split; [reflexivity | split; [assumption | split; [lia |]]]. exists 0. splits; try lia.
    intros _. rewrite zlength_snoc, Z.add_simpl_r, digits_value_snoc. assert (s = 0) as -> by lia. rewrite Z.pow_0_r.
    unfold is_u32 in Hd. nia.
  - split; [reflexivity | split; [assumption | split; [lia |]]]. exists 0. splits; try lia.
    intros _. rewrite zlength_snoc, Z.add_simpl_r, digits_value_snoc. assert (s = 0) as -> by lia. rewrite Z.pow_0_r.
    unfold is_u32 in Hd. nia.
Qed.

(** The low digits and low bits that the shift discards *)
Lemma shift_right_exact left_p c z s :
  digits_ok left_p -> 0 <= z < zlength left_p -> 0 <= s < 32 -> 0 <= c ->
  let v := digits_value left_p + B32 ^ zlength left_p * c in
  let crop := Z.to_nat z in
  ((s =? 0) || (u32 (Z.shiftl (nth crop left_p 0) (32 - s)) =? 0))
    && forallb (fun d => d =? 0) (firstn crop left_p) = (v mod (B32 ^ z * 2 ^ s) =? 0)
  /\ v / (B32 ^ z * 2 ^ s) =
       (digits_value (skipn crop left_p) + B32 ^ zlength (skipn crop left_p) * c) / 2 ^ s.
Proof.
  intros Hok Hz Hs Hc. cbv zeta. pose proof (pow2_pos s ltac:(lia)) as Hp. pose proof (pow32_pos z ltac:(lia)) as Hpz.
  pose proof (firstn_skipn (Z.to_nat z) left_p) as Esplit.
  assert (L : zlength (firstn (Z.to_nat z) left_p) = z)
    by (unfold zlength in *; rewrite length_firstn; lia).
  assert (Hd : nth (Z.to_nat z) left_p 0 = hd 0 (skipn (Z.to_nat z) left_p)).
  { rewrite <- Esplit at 1. rewrite app_nth2; unfold zlength in L; [| lia].
    replace (Z.to_nat z - length (firstn (Z.to_nat z) left_p))%nat with 0%nat by lia.
    now destruct (skipn (Z.to_nat z) left_p). }
  rewrite Hd. set (lo := firstn _ _) in *. set (hi := skipn _ _) in *. clearbody lo hi. subst left_p.
  apply Forall_app_inv in Hok as [Hlo Hhi]. rewrite zlength_app, digits_value_app, L in *.
  destruct hi as [|d hi]; [rewrite (@zlength_nil Z) in Hz; lia |]. inversion_clear Hhi as [|? ? Hdd Hhi'].
  cbn [hd]. rewrite Z.pow_add_r by (apply zlength_nonneg || lia).
  set (X := digits_value (d :: hi) + B32 ^ zlength (d :: hi) * c).
  replace (digits_value lo + _ + _) with (digits_value lo + B32 ^ z * X) by (unfold X; ring).
  pose proof (digits_value_bound _ Hlo) as Hb. rewrite L in Hb.
  assert (HX : X mod 2 ^ s = d mod 2 ^ s).
  { unfold X. cbn [digits_value]. rewrite zlength_cons, pow32_succ by apply zlength_nonneg.
    rewrite <- (pow2_split s) by lia.
    replace (d + _ + _) with (d + (2 ^ (32 - s) * (digits_value hi + (2 ^ (32 - s) * 2 ^ s) ^ zlength hi * c)) * 2 ^ s) by ring.
    now rewrite Z.mod_add by lia. }
  rewrite Z.rem_mul_r, <- Z.div_div by lia.
  assert (Hdiv : (digits_value lo + B32 ^ z * X) / B32 ^ z = X)
    by (rewrite Z.mul_comm, Z.div_add, Z.div_small by lia; lia).
  assert (Hmod : (digits_value lo + B32 ^ z * X) mod B32 ^ z = digits_value lo)
    by (rewrite Z.mul_comm, Z.mod_add, Z.mod_small by lia; lia).
  rewrite Hdiv, Hmod, HX. split; [| reflexivity].
  rewrite u32_shiftl by lia. replace (32 - (32 - s)) with s by lia.
  pose proof (pow2_pos (32 - s) ltac:(lia)). pose proof (Z.mod_pos_bound d (2 ^ s) Hp).
  apply eq_true_iff_eq. rewrite andb_true_iff, orb_true_iff, <- digits_value_zero, !Z.eqb_eq by assumption.
  split.
  - intros [[-> | Hz0] ->]; [rewrite Z.pow_0_r, Z.mod_1_r; lia | nia].
  - intros Hsum. split; [right; nia | nia].
Qed.

Section ShiftRight.
Context {HA : HeapAlloc}.

(** [1] when bits that are not zero are shifted out and the result is to be
    increased then, as for a negative number *)
Definition shift_right_increment (increase_result : bool) (value n : Z) : Z :=
  if increase_result && negb (value mod 2 ^ n =? 0) then 1 else 0.

(** The shifted digits of the operand above the cropped ones *)
Lemma shift_right_digits hi c s :
  digits_ok hi -> 0 <= s < 32 -> 0 <= c < 2 ^ s ->
  let ds := if s =? 0 then hi else shift_right_loop (rev hi) s (c * 2 ^ (32 - s)) [] in
  digits_value ds = (digits_value hi + B32 ^ zlength hi * c) / 2 ^ s
  /\ digits_ok ds /\ zlength ds = zlength hi.
Proof.
  intros Hok Hs Hc. cbv zeta. destruct (Z.eqb_spec s 0) as [->|].
  - rewrite Z.pow_0_r in *. assert (c = 0) as -> by lia.
    rewrite Z.mul_0_r, Z.add_0_r, Z.div_1_r. auto.
  - destruct (shift_right_loop_spec s ltac:(lia) (rev hi)) with (c := c) (result := @nil Z)
      as (ds & -> & V & Hok' & L); [now rewrite rev_involutive | assumption |].
    rewrite app_nil_r. rewrite rev_involutive in V.
    assert (E : zlength (rev hi) = zlength hi) by (unfold zlength; now rewrite length_rev).
    rewrite E in *. auto.
Qed.

(** All bits are shifted out. *)
Lemma wp_shift_right_all v n increase_result :
  0 < v < 2 ^ n ->
  wp (if negb increase_result then ret BIGINT_POINTER_TO_ZERO
      else bind (ecma_bigint_create sizeof_digit) (fun r =>
             match r with
             | None => ret BIGINT_NULL
             | Some r => ret (BIGINT_PTR (set_digits r [1]))
             end))
     (big_uint_result (v / 2 ^ n + shift_right_increment increase_result v n)).
Proof.
  intros Hv. unfold shift_right_increment. rewrite Z.div_small, Z.mod_small by lia.
  destruct (Z.eqb_spec v 0); [lia |]. destruct increase_result; cbn [negb andb].
  - apply wp_create_digits with (ds := [1]); try reflexivity; [repeat constructor; lia | easy].
  - wp_step. easy.
Qed.

Lemma wp_shift_right_fill size ds x increase k :
  size = digits_size ds ->
  k None = ret BIGINT_NULL ->
  (forall r, k (Some r) = if negb increase then ret (BIGINT_PTR (set_digits r ds))
                          else ecma_big_uint_increase_result (set_digits r ds)) ->
  digits_ok ds -> digits_size ds <= ECMA_BIGINT_MAX_SIZE -> ds <> [] ->
  B32 ^ (zlength ds - 1) <= digits_value ds ->
  x = digits_value ds + (if increase : bool then 1 else 0) ->
  wp (bind (ecma_bigint_create size) k) (big_uint_result x).
Proof.
  intros -> HN HS Hok Hm Hne Hlow ->. pose proof (last_nonzero _ Hok Hne Hlow) as Hl.
  destruct increase; cbn [negb] in HS.
  - apply wp_create_then; [intros _ | assumption | lia]. rewrite HS.
    apply wp_increase_result with (x := digits_value ds + 1); cbn [set_digits bigint_digits refs_and_type bigint_sign_and_size];
      try assumption; try reflexivity.
    + now apply primitive_fresh.
    + intros res held Hres. cbv beta. held_is held. { unfold primitive_bytes. lia. } assumption.
  - rewrite Z.add_0_r. now apply wp_create_digits with (ds := ds).
Qed.

Lemma wp_big_uint_shift_right v n increase_result : big_uint_wf v -> 0 < n < B32 ->
  wp (ecma_big_uint_shift_right v n increase_result)
     (big_uint_result (big_uint_value v / 2 ^ n + shift_right_increment increase_result (big_uint_value v) n)).
Proof.
  intros Hv Hn. unfold ecma_big_uint_shift_right.
  destruct (digit_shift_split n ltac:(lia)) as (-> & -> & Hs & Hpow).
  destruct (zero_size_small n) as [-> Hz]; [unfold is_u32; lia |].
  rewrite (wf_size _ Hv). pose proof (wf_max _ Hv) as Hm. change (Z.shiftl 1 ECMA_BIGINT_DIGIT_SHIFT) with 32.
  unfold ECMA_BIGINT_GET_LAST_DIGIT, big_uint_value. pose proof (wf_value_pos _ Hv) as Hpos. unfold big_uint_value in Hpos.
  destruct (if _ && _ then _ else _) as [[carry left_size] left_p] eqn:E.
  apply shift_right_operand in E as (-> & Hok & Llen & c & -> & Hc & V & Hlow); try apply Hv; try assumption.
  pose proof (shift_right_exact left_p c (n / 32) (n mod 32) Hok) as Hexact. cbv zeta in Hexact.
  rewrite <- V, <- Hpow in Hexact.
  set (x := digits_value (bigint_digits v)) in *. clearbody x. set (z := n / 32) in *. set (s := n mod 32) in *.
  clearbody z s. pose proof (pow32_pos z ltac:(lia)). pose proof (pow2_pos s ltac:(lia)).
  pose proof (digits_value_bound _ Hok) as Hb. pose proof (zlength_nonneg left_p).
  unfold digits_size at 1. destruct (Z.leb_spec (4 * zlength left_p) (4 * z)).
  { apply wp_shift_right_all. rewrite Hpow. split; [lia |].
    pose proof (Z.pow_le_mono_r B32 (zlength left_p) z). nia. }
  replace (4 * z / 4) with z by (rewrite Z.mul_comm, Z.div_mul; lia).
  destruct Hexact as [Hex Hval]; [lia .. |]. rewrite <- !andb_assoc, Hex.
  set (hi := skipn (Z.to_nat z) left_p) in *.
  assert (Lhi : zlength hi = zlength left_p - z) by (unfold hi, zlength; rewrite length_skipn; unfold zlength in *; lia).
  destruct (shift_right_digits hi c s) as (Vds & Hds & Lds); try assumption.
  { rewrite <- (firstn_skipn (Z.to_nat z) left_p) in Hok. now apply Forall_app_inv in Hok as [_ ?]. }
  cbv zeta in Vds, Hds, Lds. rewrite <- Hval in Vds. set (ds := if s =? 0 then _ else _) in *.
  unfold digits_size, ECMA_BIGINT_MAX_SIZE in *.
  eapply wp_shift_right_fill with (ds := ds); try assumption.
  - unfold digits_size. rewrite u32_small; unfold is_u32; lia.
  - reflexivity.
  - intros r. unfold ds. now destruct (s =? 0).
  - unfold digits_size, ECMA_BIGINT_MAX_SIZE. lia.
  - intros ->. rewrite (@zlength_nil Z) in Lds. lia.
  - rewrite Vds, Hpow. apply Z.div_le_lower_bound; [lia |]. rewrite Lds, Lhi.
    replace (zlength left_p - z - 1) with (zlength left_p - 1 - z) by lia.
    assert (left_p <> []) as Hne by (intros ->; rewrite (@zlength_nil Z) in *; lia). specialize (Hlow Hne).
    replace (zlength left_p - 1) with (z + (zlength left_p - 1 - z)) in Hlow by lia.
    rewrite Z.pow_add_r in Hlow by lia. lia.
  - rewrite Vds. unfold shift_right_increment. destruct increase_result; [| reflexivity].
    cbn [andb]. now destruct (x mod 2 ^ n =? 0).
Qed.
(** The same result as a rounded division *)
Lemma wp_big_uint_shift_round v n increase_result : big_uint_wf v -> 0 < n < B32 ->
  wp (ecma_big_uint_shift_right v n increase_result)
     (big_uint_result (if increase_result then - (- big_uint_value v / 2 ^ n) else big_uint_value v / 2 ^ n)).
Proof.
  intros Hv Hn. eapply wp_mono; [now apply wp_big_uint_shift_right |]. intros res held. cbv beta.
  enough (Heq : big_uint_value v / 2 ^ n + shift_right_increment increase_result (big_uint_value v) n
                = if increase_result then - (- big_uint_value v / 2 ^ n) else big_uint_value v / 2 ^ n)
    by now rewrite Heq.
  unfold shift_right_increment. destruct increase_result; cbn [andb]; [| lia].
  pose proof (pow2_pos n ltac:(lia)). destruct (Z.eqb_spec (big_uint_value v mod 2 ^ n) 0); cbn [negb].
  - rewrite Z.div_opp_l_z; lia.
  - rewrite Z.div_opp_l_nz; lia.
Qed.
End ShiftRight.

(** ** Correctness of ecma_big_uint_pow *)

Lemma wf_ref v : big_uint_wf v -> big_uint_wf (ecma_ref_extended_primitive v).
Proof. intros [S D L X]. split; assumption. Qed.

Section Pow.
Context {HA : HeapAlloc}.

(** What result_p stands for: the product it accumulates (1 for NULL) and the
    bytes it owns alone *)
Inductive pow_result_inv (left : ecma_extended_primitive_t) : pow_result -> Z -> Z -> Prop :=
| result_null : pow_result_inv left POW_NULL 1 0
| result_left : pow_result_inv left POW_LEFT (big_uint_value left) 0
| result_own v : big_uint_wf v -> big_uint_fresh v ->
    pow_result_inv left (POW_OWN v) (big_uint_value v) (primitive_bytes (bigint_digits v)).

(** The loop's variables: the product, the square, the bytes owned *)
Inductive pow_inv (left : ecma_extended_primitive_t) : pow_result -> pow_square -> Z -> Z -> Z -> Prop :=
| inv_first result acc bytes : pow_result_inv left result acc bytes ->
    pow_inv left result SQUARE_LEFT acc (big_uint_value left) bytes
| inv_apart result acc bytes v : pow_result_inv left result acc bytes ->
    big_uint_wf v -> big_uint_fresh v ->
    pow_inv left result (SQUARE_OWN v) acc (big_uint_value v) (bytes + primitive_bytes (bigint_digits v))
| inv_shared v : big_uint_wf v -> big_uint_fresh v ->
    pow_inv left POW_SQUARE (SQUARE_OWN (ecma_ref_extended_primitive v))
      (big_uint_value v) (big_uint_value v) (primitive_bytes (bigint_digits v)).

Lemma pow_inv_square left result square acc sq bytes :
  big_uint_wf left -> pow_inv left result square acc sq bytes ->
  big_uint_wf (pow_square_value left square) /\ big_uint_value (pow_square_value left square) = sq
  /\ 0 < acc /\ 0 < sq.
Proof.
  intros Hl H. assert (Hacc : forall r a b, pow_result_inv left r a b -> 0 < a).
  { intros ? ? ? []; [lia | now apply wf_value_pos ..]. }
  destruct H as [? ? ? H | ? ? ? v H Hv Hf | v Hv Hf]; cbn [pow_square_value];
    splits; eauto using wf_value_pos, wf_ref.
Qed.

Lemma wp_deref_twice v (Q : option ecma_extended_primitive_t -> Z -> Prop) :
  big_uint_fresh v -> Q (Some v) 0 -> wp (ecma_deref_bigint (ecma_ref_extended_primitive v)) Q.
Proof.
  intros Hf HQ. unfold ecma_deref_bigint, ecma_ref_extended_primitive. cbn [refs_and_type bigint_sign_and_size bigint_digits].
  rewrite (proj1 Hf). cbn -[wp]. wp_step. destruct v as [r s ds], Hf as [Hr _]. cbn in *. now subst r.
Qed.

(** Dropping square_p leaves result_p owning what it needs. *)
Lemma wp_pow_deref_square left result square acc sq bytes (Q : pow_result -> Z -> Prop) :
  pow_inv left result square acc sq bytes ->
  (forall result' bytes', pow_result_inv left result' acc bytes' -> Q result' (bytes' - bytes)) ->
  wp (pow_deref_square result square) Q.
Proof.
  intros [r a b H | r a b v H Hv Hf | v Hv Hf] HQ; cbn [pow_deref_square].
  - wp_step. held_is (b - b); [lia |]. eauto.
  - wp_step. apply wp_deref; [assumption | apply Hv |]. wp_step.
    held_is (b - (b + primitive_bytes (bigint_digits v))); [lia |].
    replace (match r with POW_SQUARE => _ | _ => r end) with r by now destruct r. eauto.
  - wp_step. apply wp_deref_twice; [assumption |]. wp_step.
    held_is (primitive_bytes (bigint_digits v) - primitive_bytes (bigint_digits v)); [lia |].
    apply HQ. now constructor.
Qed.

(** The error path releases both. *)
Lemma wp_pow_release left result square acc sq bytes x :
  pow_inv left result square acc sq bytes -> (heap_ample -> big_uint_too_large x) ->
  wp (bind (pow_deref_result result square) (fun square =>
        bind (pow_deref_square POW_NULL square) (fun _ => ret BIGINT_NULL)))
     (fun res held => big_uint_result x res (held + bytes)).
Proof.
  intros H Hx.
  assert (Hsq : forall v, big_uint_wf v -> big_uint_fresh v ->
            wp (bind (pow_deref_square POW_NULL (SQUARE_OWN v)) (fun _ => ret BIGINT_NULL))
               (fun res held => res = BIGINT_NULL /\ held = - primitive_bytes (bigint_digits v))).
  { intros v Hv Hf. wp_step. cbn [pow_deref_square]. wp_step.
    apply wp_deref; [assumption | apply Hv |]. do 2 wp_step. split; [reflexivity | lia]. }
  destruct H as [r a b H | r a b v H Hv Hf | v Hv Hf].
  - destruct H as [ | | v Hv Hf]; cbn [pow_deref_result pow_deref_square].
    1, 2: do 2 wp_step; cbn [pow_deref_square]; do 3 wp_step; cbn; split; [lia | assumption].
    do 2 wp_step. apply wp_deref; [assumption | apply Hv |]. wp_step.
    cbn [pow_deref_square]. do 3 wp_step. cbn. split; [lia | assumption].
  - destruct H as [ | | u Hu Hfu]; cbn [pow_deref_result].
    1, 2: do 2 wp_step; (eapply wp_mono; [now apply Hsq |]); intros res d [-> ->]; cbn; split; [lia | assumption].
    do 2 wp_step. apply wp_deref; [assumption | apply Hu |]. wp_step.
    eapply wp_mono; [now apply Hsq |]. intros res d [-> ->]. cbn. split; [lia | assumption].
  - cbn [pow_deref_result]. do 2 wp_step. apply wp_deref_twice; [assumption |]. wp_step.
    eapply wp_mono; [now apply Hsq |]. intros res d [-> ->]. cbn. split; [lia | assumption].
Qed.

(** The running product with the new square, or the failure to compute it *)
Definition pow_multiplied left (acc sq bytes : Z) (p : pow_result * pow_square) (held : Z) : Prop :=
  (fst p = POW_NULL /\ (heap_ample -> big_uint_too_large (acc * sq))
     /\ exists v, snd p = SQUARE_OWN v /\ big_uint_wf v /\ big_uint_fresh v
          /\ held + bytes = primitive_bytes (bigint_digits v))
  \/ (fst p <> POW_NULL /\ fst p <> POW_LEFT /\ pow_inv left (fst p) (snd p) (acc * sq) sq (held + bytes)).

Lemma wp_pow_multiply left result acc bytes v :
  big_uint_wf left -> pow_result_inv left result acc bytes -> big_uint_wf v -> big_uint_fresh v ->
  wp (pow_multiply left result v)
     (pow_multiplied left acc (big_uint_value v) (bytes + primitive_bytes (bigint_digits v))).
Proof.
  intros Hl H Hv Hf. unfold pow_multiply.
  assert (Hown : forall r, pow_result_inv left r acc bytes -> forall res d,
            big_uint_result (acc * big_uint_value v) res d ->
            pow_multiplied left acc (big_uint_value v) (bytes + primitive_bytes (bigint_digits v))
              (match res with BIGINT_PTR u => POW_OWN u | _ => POW_NULL end, SQUARE_OWN v) (d - bytes)).
  { intros r Hr res d Hres. pose proof (wf_value_pos _ Hv).
    assert (0 < acc) by (destruct Hr; [lia | now apply wf_value_pos ..]).
    destruct res as [ | | u]; cbn in Hres.
    - left. cbn. splits; try easy. exists v. splits; try easy. lia.
    - exfalso. nia.
    - right. cbn [fst snd]. split; [easy | split; [easy |]]. destruct Hres as (Hval & Hu & Hfu & ->). rewrite <- Hval.
      replace (_ + _) with (primitive_bytes (bigint_digits u) + primitive_bytes (bigint_digits v)) by lia.
      constructor; try assumption. now constructor. }
  destruct H as [ | | u Hu Hfu].
  - wp_step. right. cbn [fst snd]. splits; try easy. rewrite Z.mul_1_l. now constructor.
  - wp_step. eapply wp_mono; [now apply wp_big_uint_mul |]. intros res d Hres. cbn [pow_deref_result].
    do 3 wp_step. held_is (d - 0); [lia |]. apply (Hown POW_LEFT); [constructor | now rewrite Z.mul_comm].
  - wp_step. eapply wp_mono; [now apply wp_big_uint_mul |]. intros res d Hres. cbn [pow_deref_result].
    do 2 wp_step. apply wp_deref; [assumption | apply Hu |]. do 2 wp_step.
    held_is (d - primitive_bytes (bigint_digits u)); [lia |].
    apply (Hown (POW_OWN u)); [now constructor | now rewrite Z.mul_comm].
Qed.

Lemma too_large_le a b : a <= b -> big_uint_too_large a -> big_uint_too_large b.
Proof. unfold big_uint_too_large. generalize (B32 ^ ECMA_BIGINT_MAX_DIGITS). intros. lia. Qed.

Lemma mul_grows a q p : 0 < a -> 0 < q -> 0 < p -> q <= a * (q * p).
Proof. intros. assert (1 <= a * p) by nia. nia. Qed.

Lemma pow_halve sq e : 2 <= e ->
  (sq * sq) ^ (e / 2) =
    (if Z.odd (e / 2) then sq * sq else 1) * ((sq * sq) * (sq * sq)) ^ (e / 2 / 2).
Proof.
  intros He. set (h := e / 2). generalize (sq * sq). intros q. assert (1 <= h) by (apply Z.div_le_lower_bound; lia).
  rewrite Z.pow_mul_l. rewrite <- Z.pow_add_r by (apply Z.div_pos; lia).
  pose proof (Z.div_mod h 2 ltac:(lia)) as E. rewrite Zmod_odd in E.
  replace (h / 2 + h / 2) with (h - (if Z.odd h then 1 else 0)) by (destruct (Z.odd h); lia).
  destruct (Z.odd h).
  - rewrite <- Z.pow_succ_r by lia. f_equal. lia.
  - rewrite Z.mul_1_l. f_equal. lia.
Qed.

Lemma number_is_odd n : ECMA_BIGINT_NUMBER_IS_ODD n = Z.odd n.
Proof.
  unfold ECMA_BIGINT_NUMBER_IS_ODD. rewrite (land_ones' n 1 1) by (reflexivity || lia).
  change (2 ^ 1) with 2. rewrite Zmod_odd. now destruct (Z.odd n).
Qed.

(** The exit of the loop *)
Lemma wp_pow_exit left result square x sq bytes :
  result <> POW_NULL -> result <> POW_LEFT -> pow_inv left result square x sq bytes ->
  wp (bind (pow_deref_square result square) (fun result => ret (pow_result_ptr left result)))
     (fun res held => big_uint_result x res (held + bytes)).
Proof.
  intros Hn Hx H. destruct H as [r a b H | r a b v H Hv Hf | v Hv Hf]; cbn [pow_deref_square]; wp_step.
  - destruct H as [ | | u Hu Hfu]; try easy. do 2 wp_step. cbn. splits; auto; lia.
  - wp_step. destruct H as [ | | u Hu Hfu]; try easy. apply wp_deref; [assumption | apply Hv |].
    do 2 wp_step. cbn. splits; auto; lia.
  - wp_step. apply wp_deref_twice; [assumption |]. do 2 wp_step. cbn. splits; auto; lia.
Qed.

Lemma wp_pow_loop left x : big_uint_wf left -> forall fuel e result square acc sq bytes,
  pow_inv left result square acc sq bytes -> 2 <= e < 2 ^ (Z.of_nat fuel + 1) ->
  x = acc * (sq * sq) ^ (e / 2) ->
  wp (pow_loop fuel left e result square) (fun res held => big_uint_result x res (held + bytes)).
Proof.
  intros Hl. induction fuel as [|fuel IH]; intros e result square acc sq bytes H He Hx;
    [change (2 ^ (Z.of_nat 0 + 1)) with 2 in He; lia |].
  destruct (pow_inv_square _ _ _ _ _ _ Hl H) as (Hsw & Hsv & Hacc & Hsq).
  assert (Hh : 1 <= e / 2) by (apply Z.div_le_lower_bound; lia).
  assert (Hlarge : big_uint_too_large (sq * sq) -> big_uint_too_large x).
  { apply too_large_le. rewrite Hx. replace (e / 2) with (1 + (e / 2 - 1)) by lia.
    rewrite Z.pow_add_r, Z.pow_1_r by lia. 
    assert (0 < sq * sq) by (apply Z.mul_pos_pos; lia).
    assert (0 < (sq * sq) ^ (e / 2 - 1)) by (apply Z.pow_pos_nonneg; lia).
    apply mul_grows; assumption. }
  rewrite pow_halve in Hx by lia.
  cbn [pow_loop]. wp_step. eapply wp_mono; [now apply wp_big_uint_mul |]. rewrite Hsv.
  intros [ | | v] d Hres; cbn in Hres.
  - destruct Hres as [-> Hbig]. eapply wp_mono; [eapply wp_pow_release; [eassumption | intros Ha; apply Hlarge, Hbig, Ha] |].
    intros res h. now rewrite Z.add_0_l.
  - nia.
  - destruct Hres as (Hval & Hv & Hf & ->). rewrite <- Hval in *. clear Hval. wp_step.
    eapply wp_pow_deref_square; [eassumption |]. intros r b Hr.
    rewrite Z.shiftr_div_pow2, Z.pow_1_r, number_is_odd by lia.
    assert (Hnext : e / 2 < 2 ^ (Z.of_nat fuel + 1)).
    { apply Z.div_lt_upper_bound; [lia |]. rewrite <- Z.pow_succ_r by lia.
      now replace (Z.succ _) with (Z.of_nat (S fuel) + 1) by lia. }
    destruct (Z.odd (e / 2)) eqn:Eo.
    + wp_step. eapply wp_mono; [eapply wp_pow_multiply; eassumption |].
      intros [r' sq'] d Hm. unfold pow_multiplied in Hm. cbn [fst snd] in Hm.
      destruct Hm as [(-> & Hbig & u & -> & Hu & Hfu & Hd) | (Hn & Hnl & Hi)].
      * cbn [orb pow_deref_square]. do 2 wp_step. apply wp_deref; [assumption | apply Hu |]. do 2 wp_step.
        cbn [pow_result_ptr]. split; [lia |]. intros Ha. eapply too_large_le, Hbig, Ha. rewrite Hx.
        assert (0 < (big_uint_value v * big_uint_value v) ^ (e / 2 / 2)).
        { pose proof (wf_value_pos _ Hv). apply Z.pow_pos_nonneg; [nia | apply Z.div_pos; lia]. }
        pose proof (wf_value_pos _ Hv). set (p := _ ^ (e / 2 / 2)) in *. clearbody p.
        rewrite Z.mul_assoc. assert (0 < acc * big_uint_value v) by (apply Z.mul_pos_pos; lia). nia.
      * replace (match r' with POW_NULL => true | _ => false end) with false by now destruct r'. cbn [orb].
        destruct (Z.eqb_spec (e / 2) 1) as [E1|E1].
        -- rewrite E1 in Hx. change (1 / 2) with 0 in Hx. rewrite Z.pow_0_r, Z.mul_1_r in Hx. rewrite <- Hx in Hi.
           eapply wp_mono; [eapply wp_pow_exit; eassumption |]. cbv beta. intros res h Hh'.
           held_is (h + (d + (b + primitive_bytes (bigint_digits v)))); [lia | assumption].
        -- eapply wp_mono; [eapply IH with (e := e / 2); [exact Hi | lia | lia] |]. cbv beta. intros res h Hh'.
           held_is (h + (d + (b + primitive_bytes (bigint_digits v)))); [lia | assumption].
    + assert (e / 2 <> 1) by (intros E1; rewrite E1 in Eo; discriminate).
      eapply wp_mono; [eapply IH with (e := e / 2); [now apply inv_apart; eassumption | lia | lia] |].
      cbv beta. intros res h Hh'.
      held_is (h + (b + primitive_bytes (bigint_digits v))); [lia | assumption].
Qed.

Lemma wp_big_uint_pow v n : big_uint_wf v -> 2 <= n < B32 ->
  wp (ecma_big_uint_pow v n) (big_uint_result (big_uint_value v ^ n)).
Proof.
  intros Hv Hn. unfold ecma_big_uint_pow. rewrite number_is_odd.
  eapply wp_mono with (Q := fun res held => big_uint_result (big_uint_value v ^ n) res (held + 0)).
  2: { intros a d. now rewrite Z.add_0_r. }
  assert (Hpow : big_uint_value v ^ n
            = (if Z.odd n then big_uint_value v else 1) * (big_uint_value v * big_uint_value v) ^ (n / 2)).
  { rewrite Z.pow_mul_l. rewrite <- Z.pow_add_r by (apply Z.div_pos; lia).
    pose proof (Z.div_mod n 2 ltac:(lia)) as E. rewrite Zmod_odd in E. destruct (Z.odd n).
    - rewrite <- Z.pow_succ_r by (pose proof (Z.div_pos n 2); lia). f_equal. lia.
    - rewrite Z.mul_1_l. f_equal. lia. }
  destruct (Z.odd n); apply (wp_pow_loop v _ Hv 32 n) with (2 := conj (proj1 Hn) (Z.lt_trans _ _ (2 ^ 33) (proj2 Hn) eq_refl)) (3 := Hpow);
    constructor; constructor.
Qed.
End Pow.

(** ** Bitwise operations on numbers *)

Definition bitwise_value (operation_type x y : Z) : Z :=
  if operation_type =? ECMA_BIG_UINT_BITWISE_AND then Z.land x y
  else if operation_type =? ECMA_BIG_UINT_BITWISE_OR then Z.lor x y
  else if operation_type =? ECMA_BIG_UINT_BITWISE_XOR then Z.lxor x y
  else Z.ldiff x y.

Definition bitwise_bit (operation_type : Z) (a b : bool) : bool :=
  if operation_type =? ECMA_BIG_UINT_BITWISE_AND then a && b
  else if operation_type =? ECMA_BIG_UINT_BITWISE_OR then a || b
  else if operation_type =? ECMA_BIG_UINT_BITWISE_XOR then xorb a b
  else a && negb b.

Lemma bitwise_value_spec op x y i :
  Z.testbit (bitwise_value op x y) i = bitwise_bit op (Z.testbit x i) (Z.testbit y i).
Proof.
  unfold bitwise_value, bitwise_bit.
  destruct (op =? _); [apply Z.land_spec |]. destruct (op =? _); [apply Z.lor_spec |].
  destruct (op =? _); [apply Z.lxor_spec | apply Z.ldiff_spec].
Qed.

Lemma bitwise_bit_false op : bitwise_bit op false false = false.
Proof. unfold bitwise_bit. now repeat destruct (op =? _). Qed.

Lemma bitwise_value_0 op : bitwise_value op 0 0 = 0.
Proof. unfold bitwise_value. now repeat destruct (op =? _). Qed.

Lemma bitwise_value_bound op n a b : 0 <= n -> 0 <= a < 2 ^ n -> 0 <= b < 2 ^ n ->
  0 <= bitwise_value op a b < 2 ^ n.
Proof.
  intros Hn Ha Hb. enough (bitwise_value op a b = bitwise_value op a b mod 2 ^ n) as ->
    by (apply Z.mod_pos_bound, pow2_pos; lia).
  apply Z.bits_inj'. intros i Hi. destruct (Z.lt_ge_cases i n).
  - now rewrite Z.mod_pow2_bits_low by lia.
  - rewrite Z.mod_pow2_bits_high by lia. rewrite bitwise_value_spec.
    rewrite <- (Z.mod_small a (2 ^ n)), <- (Z.mod_small b (2 ^ n)), !Z.mod_pow2_bits_high by lia.
    apply bitwise_bit_false.
Qed.

(** The operations work digit by digit. *)
Lemma bitwise_value_split op n a b x y :
  0 <= n -> 0 <= a < 2 ^ n -> 0 <= b < 2 ^ n ->
  bitwise_value op (a + 2 ^ n * x) (b + 2 ^ n * y) = bitwise_value op a b + 2 ^ n * bitwise_value op x y.
Proof.
  intros Hn Ha Hb. pose proof (bitwise_value_bound op n a b Hn Ha Hb) as Hf.
  rewrite !(Z.add_comm _ (2 ^ n * _)), !(Z.mul_comm (2 ^ n)), <- !lor_shiftl_low by lia.
  apply Z.bits_inj'. intros i Hi. rewrite bitwise_value_spec, !Z.lor_spec. destruct (Z.lt_ge_cases i n).
  - rewrite !Z.shiftl_spec_low by lia. cbn [orb]. now rewrite bitwise_value_spec.
  - rewrite !Z.shiftl_spec by lia. rewrite bitwise_value_spec.
    rewrite <- (Z.mod_small a (2 ^ n)) at 1 by lia. rewrite <- (Z.mod_small b (2 ^ n)) at 1 by lia.
    rewrite <- (Z.mod_small (bitwise_value op a b) (2 ^ n)) by lia.
    now rewrite !Z.mod_pow2_bits_high, !orb_false_r by lia.
Qed.

Lemma pow32_pow2 n : 0 <= n -> B32 ^ n = 2 ^ (32 * n).
Proof. intros. change B32 with (2 ^ 32). now rewrite <- Z.pow_mul_r by lia. Qed.

Lemma bitwise_digits_split op n a b x y :
  0 <= n -> 0 <= a < B32 ^ n -> 0 <= b < B32 ^ n ->
  bitwise_value op (a + B32 ^ n * x) (b + B32 ^ n * y) = bitwise_value op a b + B32 ^ n * bitwise_value op x y.
Proof. intros Hn. rewrite pow32_pow2 by lia. intros. apply bitwise_value_split; lia. Qed.

Lemma bitwise_digit_value op l r : is_u32 l -> is_u32 r ->
  bitwise_digit op l r = bitwise_value op l r /\ is_u32 (bitwise_value op l r).
Proof.
  intros Hl Hr. split; [| apply (bitwise_value_bound op 32); [lia | assumption ..]].
  unfold bitwise_digit, bitwise_value. do 3 (destruct (op =? _); [reflexivity |]).
  apply Z.bits_inj'. intros i Hi. rewrite Z.land_spec, Z.ldiff_spec. unfold u32, is_u32 in *.
  change B32 with (2 ^ 32) in *. destruct (Z.lt_ge_cases i 32).
  - now rewrite Z.mod_pow2_bits_low, Z.lnot_spec by lia.
  - rewrite <- (Z.mod_small l (2 ^ 32)) by lia. now rewrite Z.mod_pow2_bits_high by lia.
Qed.

Lemma borrow_step_spec d carry d' carry' : is_u32 d -> 0 <= carry <= 1 ->
  borrow_step d carry = (d', carry') ->
  d' - B32 * carry' = d - carry /\ is_u32 d' /\ 0 <= carry' <= 1.
Proof.
  intros Hd Hc. unfold borrow_step, DIGIT_MAX. pose proof (u32_sub_cases d carry) as H.
  unfold is_u32 in *. destruct (Z.eqb_spec (u32 (d - carry)) 4294967295); cbn [negb]; intro_pair; lia.
Qed.

(** The loop computes the operation on the operands' digits with their pending
    borrows; what is left of the left operand follows. *)
Lemma bitwise_borrow_loop_spec op right : digits_ok right -> forall left lc rc ds carry rest,
  digits_ok left -> zlength right <= zlength left -> 0 <= lc <= 1 -> 0 <= rc <= 1 ->
  bitwise_borrow_loop op left right lc rc = (ds, carry, rest) ->
  exists pre x y rc', left = pre ++ rest /\ zlength pre = zlength right
    /\ 0 <= x < B32 ^ zlength right /\ 0 <= y < B32 ^ zlength right
    /\ x - B32 ^ zlength right * carry = digits_value pre - lc
    /\ y - B32 ^ zlength right * rc' = digits_value right - rc
    /\ 0 <= carry <= 1 /\ 0 <= rc' <= 1
    /\ digits_value ds = bitwise_value op x y /\ digits_ok ds /\ zlength ds = zlength right.
Proof.
  induction 1 as [|r right Hr Hok IH]; intros left lc rc ds carry rest Hl Hlen Hlc Hrc; cbn [bitwise_borrow_loop].
  { intro_triple. exists [], 0, 0, rc. rewrite (@zlength_nil Z), Z.pow_0_r, bitwise_value_0. cbn [digits_value].
    splits; try lia; try reflexivity; constructor. }
  destruct left as [|l left]; [rewrite zlength_cons, (@zlength_nil Z) in Hlen; pose proof (zlength_nonneg right); lia |].
  inversion_clear Hl as [|? ? Hl0 Hl']. rewrite !zlength_cons in Hlen.
  destruct (borrow_step l lc) as [l' lc'] eqn:El, (borrow_step r rc) as [r' rc'] eqn:Er.
  apply borrow_step_spec in El as (Vl & Hl'' & Hlc'), Er as (Vr & Hr'' & Hrc'); try assumption.
  destruct (bitwise_borrow_loop _ _ _ _ _) as [[ds' c'] rest'] eqn:E. intro_triple.
  apply IH in E as (pre & x & y & rc2 & -> & Lp & Hx & Hy & Vx & Vy & Hc & Hrc2 & Vd & Hds & Ld);
    try assumption; try lia.
  destruct (bitwise_digit_value op l' r' Hl'' Hr'') as [-> Hu].
  exists (l :: pre), (l' + B32 * x), (r' + B32 * y), rc2.
  rewrite !zlength_cons, pow32_succ by apply zlength_nonneg. cbn [digits_value].
  set (p := B32 ^ zlength right) in *. clearbody p. unfold is_u32 in *.
  splits; try assumption; try reflexivity; try nia.
  - pose proof (bitwise_digits_split op 1 l' r' x y ltac:(lia)) as Hsplit. rewrite Z.pow_1_r in Hsplit.
    rewrite Hsplit, Vd by assumption. reflexivity.
  - now apply Forall_cons.
Qed.

(** Without pending borrows the loop is the plain one. *)
Lemma bitwise_loop_borrow op right : digits_ok right -> forall left, digits_ok left ->
  bitwise_borrow_loop op left right 0 0 =
    (fst (bitwise_loop (bitwise_value op) left right), 0, snd (bitwise_loop (bitwise_value op) left right)).
Proof.
  induction 1 as [|r right Hr Hok IH]; intros [|l left] Hl; try reflexivity.
  inversion_clear Hl as [|? ? Hl0 Hl']. cbn [bitwise_borrow_loop bitwise_loop].
  assert (Hb : forall d, is_u32 d -> borrow_step d 0 = (d, 0)).
  { intros d Hd. unfold borrow_step. rewrite Z.sub_0_r, u32_small by assumption. now destruct (negb _). }
  rewrite !Hb by assumption. rewrite IH by assumption.
  destruct (bitwise_digit_value op l r Hl0 Hr) as [-> _].
  now destruct (bitwise_loop _ left right).
Qed.

(** ** Correctness of ecma_big_uint_bitwise_op *)

(** The options word for an operation with its three flags *)
Definition bitwise_options (operation_type : Z) (decrease_left decrease_right increase_result : bool) : Z :=
  operation_type + 16 * Z.b2z decrease_left + 32 * Z.b2z decrease_right + 64 * Z.b2z increase_result.

Definition is_operation (op : Z) : Prop := op = 0 \/ op = 1 \/ op = 2 \/ op = 3.

Lemma options_decode op dl dr inc : is_operation op ->
  let o := bitwise_options op dl dr inc in
  ECMA_BIGINT_BITWISE_GET_OPERATION_TYPE o = op
  /\ has_option o ECMA_BIG_UINT_BITWISE_DECREASE_BOTH = dl || dr
  /\ has_option o ECMA_BIG_UINT_BITWISE_DECREASE_LEFT = dl
  /\ has_option o ECMA_BIG_UINT_BITWISE_DECREASE_RIGHT = dr
  /\ has_option o ECMA_BIG_UINT_BITWISE_INCREASE_RESULT = inc.
Proof. intros [->|[->|[->| ->]]]; destruct dl, dr, inc; now vm_compute. Qed.

(** Swapping the operands swaps their options. *)
Lemma options_swap op dl dr inc : is_operation op ->
  let o := bitwise_options op dl dr inc in
  let decrease_opts := Z.land o ECMA_BIG_UINT_BITWISE_DECREASE_BOTH in
  (if (ECMA_BIG_UINT_BITWISE_DECREASE_LEFT <=? decrease_opts)
      && (decrease_opts <=? ECMA_BIG_UINT_BITWISE_DECREASE_RIGHT)
   then Z.lxor o ECMA_BIG_UINT_BITWISE_DECREASE_BOTH else o) = bitwise_options op dr dl inc.
Proof. intros [->|[->|[->| ->]]]; destruct dl, dr, inc; reflexivity. Qed.

Lemma bitwise_value_0_r op x : is_operation op -> op <> 0 -> bitwise_value op x 0 = x.
Proof.
  intros [->|[->|[->| ->]]] Hn; try easy; cbn; [apply Z.lor_0_r | apply Z.lxor_0_r | apply Z.ldiff_0_r].
Qed.

Lemma bitwise_core op lhs rhs nr dl dr ds carry rest :
  is_operation op -> digits_ok lhs -> digits_ok rhs ->
  0 <= nr <= zlength rhs -> nr <= zlength lhs ->
  nr = zlength rhs \/ (nr = zlength lhs /\ (op = 0 \/ op = 3)) ->
  0 <= dl <= 1 -> 0 <= dr <= 1 -> dl <= digits_value lhs -> dr <= digits_value rhs ->
  bitwise_borrow_loop op lhs (firstn (Z.to_nat nr) rhs) dl dr = (ds, carry, rest) ->
  digits_ok ds /\ zlength ds = nr /\ 0 <= carry <= 1 /\ carry <= digits_value rest
  /\ (exists pre, lhs = pre ++ rest /\ zlength pre = nr)
  /\ bitwise_value op (digits_value lhs - dl) (digits_value rhs - dr)
     = digits_value ds + B32 ^ nr * (if op =? 0 then 0 else digits_value rest - carry).
Proof.
  intros Hop Hl Hr Hnr Hnl Hcase Hdl Hdr Hdl' Hdr' E.
  pose proof (firstn_skipn (Z.to_nat nr) rhs) as Esplit.
  assert (L : zlength (firstn (Z.to_nat nr) rhs) = nr) by (unfold zlength in *; rewrite length_firstn; lia).
  set (rp := firstn _ _) in *. set (rr := skipn _ _) in *. clearbody rp rr. subst rhs.
  apply Forall_app_inv in Hr as [Hrp Hrr]. rewrite zlength_app, digits_value_app, L in *.
  apply bitwise_borrow_loop_spec in E as (pre & x & y & rc & -> & Lp & Hx & Hy & Vx & Vy & Hc & Hrc & Vd & Hds & Ld);
    try assumption; try lia.
  rewrite L in *. rewrite zlength_app, digits_value_app, Lp in *.
  apply Forall_app_inv in Hl as [_ Hrest].
  pose proof (digits_value_bound _ Hrest) as Hb1. pose proof (digits_value_bound _ Hrr) as Hb2.
  pose proof (pow32_pos nr ltac:(lia)) as Hp.
  assert (Hcr : carry <= digits_value rest) by nia. assert (Hcr' : rc <= digits_value rr) by nia.
  splits; try assumption; try lia; [now exists pre |].
  replace (_ + _ * digits_value rest - dl) with (x + B32 ^ nr * (digits_value rest - carry)) by lia.
  replace (_ + _ * digits_value rr - dr) with (y + B32 ^ nr * (digits_value rr - rc)) by lia.
  rewrite bitwise_digits_split, Vd by lia. f_equal. f_equal.
  destruct Hcase as [Hfull | [Hfull Hop']].
  - assert (rr = []) as -> by (destruct rr; [easy | rewrite zlength_cons in *; pose proof (zlength_nonneg rr); lia]).
    cbn [digits_value] in *. assert (rc = 0) as -> by lia. rewrite Z.sub_0_r.
    destruct (Z.eqb_spec op 0) as [->|]; [apply Z.land_0_r | now apply bitwise_value_0_r].
  - assert (rest = []) as -> by (destruct rest; [easy | rewrite zlength_cons in *; pose proof (zlength_nonneg rest); lia]).
    cbn [digits_value] in *. assert (carry = 0) as -> by lia. rewrite Z.sub_0_r.
    destruct Hop' as [-> | ->]; [apply Z.land_0_l | apply Z.ldiff_0_l].
Qed.

(** The borrow that the loop leaves behind is taken from the copied digits. *)
Lemma bitwise_tail rest carry done rest' :
  digits_ok rest -> 0 <= carry <= 1 -> carry <= digits_value rest ->
  (if 0 <? carry then decrease_digits rest else ([], rest)) = (done, rest') ->
  digits_ok (done ++ rest') /\ digits_value (done ++ rest') = digits_value rest - carry
  /\ zlength (done ++ rest') = zlength rest /\ (rest' <> [] -> last rest' 0 = last rest 0).
Proof.
  intros Hok Hc Hv. destruct (Z.ltb_spec 0 carry).
  - intros E. assert (carry = 1) as -> by lia.
    apply decrease_digits_spec in E as (V & Hd & _ & pre & -> & Lp); [| assumption | lia].
    apply Forall_app_inv in Hok as [_ Hr]. rewrite digits_value_app, !zlength_app.
    splits; try lia; [now apply Forall_app |]. intros Hne. now rewrite last_app_nonempty.
  - intro_pair. splits; try assumption; try reflexivity; cbn [app]; lia.
Qed.

Definition decreased (v : ecma_extended_primitive_t) (decrease : bool) : Z := big_uint_value v - Z.b2z decrease.

(** What the first switch of ecma_big_uint_bitwise_op guarantees: the operands
    (swapped or not) still denote the same result, and the two sizes are those
    of the result and of the digits combined by the loop. *)
Record operands_spec (op : Z) (value : Z) (any : bool) (lhs rhs : ecma_extended_primitive_t)
    (nl nr : Z) (dl dr : bool) : Prop := {
  op_lhs : big_uint_wf lhs;
  op_rhs : big_uint_wf rhs;
  op_left : nl = if op =? 0 then nr else zlength (bigint_digits lhs);
  op_right : 0 < nr <= zlength (bigint_digits rhs);
  op_right_left : nr <= zlength (bigint_digits lhs);
  op_full : nr = zlength (bigint_digits rhs) \/ (nr = zlength (bigint_digits lhs) /\ (op = 0 \/ op = 3));
  op_any : dl || dr = any;
  op_value : bitwise_value op (decreased lhs dl) (decreased rhs dr) = value
}.

Lemma bitwise_value_comm op x y : op = 1 \/ op = 2 -> bitwise_value op x y = bitwise_value op y x.
Proof. intros [-> | ->]; [apply Z.lor_comm | apply Z.lxor_comm]. Qed.

Lemma bitwise_operands_spec op dl dr inc left right :
  is_operation op -> big_uint_wf left -> big_uint_wf right ->
  exists lhs rhs nl nr dl' dr',
    bitwise_operands (bitwise_options op dl dr inc) left right
      = (lhs, rhs, 4 * nl, 4 * nr, bitwise_options op dl' dr' inc)
    /\ operands_spec op (bitwise_value op (decreased left dl) (decreased right dr)) (dl || dr)
         lhs rhs nl nr dl' dr'.
Proof.
  intros Hop Hl Hr. unfold bitwise_operands. destruct (options_decode op dl dr inc Hop) as (-> & _).
  rewrite (options_swap op dl dr inc Hop), (wf_size _ Hl), (wf_size _ Hr).
  pose proof (zlength_pos _ (wf_nonempty _ Hl)) as Pl. pose proof (zlength_pos _ (wf_nonempty _ Hr)) as Pr.
  unfold digits_size. set (nl := zlength (bigint_digits left)) in *. set (nr := zlength (bigint_digits right)) in *.
  unfold ECMA_BIG_UINT_BITWISE_AND, ECMA_BIG_UINT_BITWISE_AND_NOT.
  destruct (Z.ltb_spec (4 * nr) (4 * nl)), (Z.ltb_spec (4 * nl) (4 * nr)), (Z.leb_spec (4 * nr) (4 * nl)); try lia.
  all: destruct Hop as [->|[->|[->| ->]]]; cbn [Z.eqb Pos.eqb andb orb].
  all: match goal with
       | |- exists lhs rhs nl nr dl' dr', (?a, ?b, 4 * ?x, 4 * ?y, bitwise_options _ ?c ?d _) = _ /\ _ =>
           exists a, b, x, y, c, d
       end; (split; [reflexivity |]); split; try assumption; try reflexivity; cbn [Z.eqb Pos.eqb]; try lia.
  all: try (now rewrite orb_comm); apply bitwise_value_comm; lia.
Qed.

(** The digits of the result: those of the loop, then those of the left operand
    after the remaining borrow *)
Lemma bitwise_digits op value any lhs rhs nl nr dl dr ds carry rest done rest' :
  is_operation op -> operands_spec op value any lhs rhs nl nr dl dr ->
  bitwise_borrow_loop op (bigint_digits lhs) (firstn (Z.to_nat nr) (bigint_digits rhs)) (Z.b2z dl) (Z.b2z dr)
    = (ds, carry, rest) ->
  (if op =? 0 then ([], []) else if 0 <? carry then decrease_digits rest else ([], rest)) = (done, rest') ->
  let all := (ds ++ done) ++ rest' in
  digits_ok all /\ zlength all = nl /\ digits_value all = value /\ (rest' <> [] -> last all 0 <> 0)
  /\ 0 <= carry <= 1 /\ (op <> 0 -> zlength rest = nl - nr).
Proof.
  intros Hop [Hl Hr Hnl Hnr Hnr' Hfull Hany Hval] E Et. cbv zeta.
  pose proof (wf_value_pos _ Hl) as Pl. pose proof (wf_value_pos _ Hr) as Pr. unfold big_uint_value in *.
  apply bitwise_core in E as (Hds & Ld & Hc & Hcr & (pre & Epre & Lpre) & V);
    try apply Hl; try apply Hr; try assumption; try lia; [| destruct dl; cbn; lia .. | destruct dr; cbn; lia | destruct dl; cbn; lia | destruct dr; cbn; lia].
  unfold decreased, big_uint_value in Hval. rewrite V in Hval.
  assert (Lrest : zlength rest = zlength (bigint_digits lhs) - nr) by (rewrite Epre, zlength_app; lia).
  destruct (Z.eqb_spec op 0) as [->|Hnz].
  - revert Et. intro_pair. rewrite !app_nil_r. splits; try easy; lia.
  - pose proof (wf_digits _ Hl) as Hok. rewrite Epre in Hok. apply Forall_app_inv in Hok as [_ Hok].
    apply bitwise_tail in Et as (Hok' & V' & L' & Hlast); try assumption.
    rewrite <- app_assoc, digits_value_app, zlength_app, L', V', Ld.
    splits; try lia; [now apply Forall_app |]. intros Hne. specialize (Hlast Hne).
    rewrite app_assoc, last_app_nonempty, Hlast by assumption.
    assert (Hne2 : rest <> []).
    { intros ->. destruct rest' as [|d r]; [easy |]. rewrite zlength_app, zlength_cons, (@zlength_nil Z) in L'.
      pose proof (zlength_nonneg done). pose proof (zlength_nonneg r). lia. }
    pose proof (wf_last _ Hl) as Hwl. now rewrite Epre, last_app_nonempty in Hwl.
Qed.

Lemma lor_lower x y : 0 <= x -> 0 <= y -> x <= Z.lor x y.
Proof.
  intros Hx Hy. replace (Z.lor x y) with (Z.lor x (Z.ldiff y x)).
  - rewrite lor_add_disjoint.
    + assert (0 <= Z.ldiff y x) by (apply Z.ldiff_nonneg; lia). lia.
    + apply Z.bits_inj'. intros i _. rewrite Z.land_spec, Z.ldiff_spec, Z.bits_0.
      now destruct (Z.testbit x i), (Z.testbit y i).
  - apply Z.bits_inj'. intros i _. rewrite !Z.lor_spec, Z.ldiff_spec.
    now destruct (Z.testbit x i), (Z.testbit y i).
Qed.

Section Bitwise.
Context {HA : HeapAlloc}.

(** The trailing part of the operation on a block filled with [ds]. *)
Lemma wp_normalize_if_zero size ds x :
  digits_size ds = size -> size <= ECMA_BIGINT_MAX_SIZE -> digits_ok ds -> digits_value ds = x -> ds <> [] ->
  wp (normalize_if_zero (set_digits (mk_primitive 14 size []) ds))
     (fun res held => big_uint_result x res (held + (ECMA_BIGINT_GET_BYTE_SIZE size + sizeof_primitive))).
Proof.
  intros Hs Hm Hok Hx Hne. unfold normalize_if_zero. cbn [set_digits bigint_digits].
  destruct (Z.eqb_spec (last ds 0) 0).
  - now apply wp_fill_normalize.
  - wp_step. rewrite <- Hx. apply result_fill; try easy; [now apply digits_value_pos | now apply digits_value_lower].
Qed.

Lemma wp_fill_increase size ds x :
  digits_size ds = size -> size <= ECMA_BIGINT_MAX_SIZE -> digits_ok ds -> digits_value ds + 1 = x ->
  wp (ecma_big_uint_increase_result (set_digits (mk_primitive 14 size []) ds))
     (fun res held => big_uint_result x res (held + (ECMA_BIGINT_GET_BYTE_SIZE size + sizeof_primitive))).
Proof.
  intros <- Hm Hok Hx.
  apply wp_increase_result with (x := x); cbn [set_digits bigint_digits refs_and_type bigint_sign_and_size];
    try assumption.
  - now apply primitive_fresh.
  - now symmetry.
  - intros res held Hres. cbv beta. held_is held. { unfold primitive_bytes. lia. } assumption.
Qed.

Lemma result_filled size ds x :
  digits_size ds = size -> size <= ECMA_BIGINT_MAX_SIZE -> digits_ok ds -> last ds 0 <> 0 -> digits_value ds = x ->
  big_uint_result x (BIGINT_PTR (set_digits (mk_primitive 14 size []) ds))
    (0 + (ECMA_BIGINT_GET_BYTE_SIZE size + sizeof_primitive)).
Proof.
  intros Hs Hm Hok Hl <-. apply result_fill; try easy; [now apply digits_value_pos | now apply digits_value_lower].
Qed.

Lemma wp_big_uint_bitwise_op op dl dr inc left right :
  is_operation op -> big_uint_wf left -> big_uint_wf right ->
  dl || dr = true \/ (inc = false /\ op <> 3) ->
  wp (ecma_big_uint_bitwise_op (bitwise_options op dl dr inc) left right)
     (big_uint_result (bitwise_value op (decreased left dl) (decreased right dr) + Z.b2z inc)).
Proof.
  intros Hop Hl Hr Hopt. unfold ecma_big_uint_bitwise_op.
  destruct (bitwise_operands_spec op dl dr inc left right Hop Hl Hr)
    as (lhs & rhs & nl & nr & dl' & dr' & -> & Hspec).
  destruct (options_decode op dl dr inc Hop) as (-> & _).
  destruct (options_decode op dl' dr' inc Hop) as (_ & -> & -> & -> & ->).
  set (value := bitwise_value op (decreased left dl) (decreased right dr)) in *. clearbody value.
  rewrite (op_any _ _ _ _ _ _ _ _ _ Hspec).
  replace (4 * nr / 4) with nr by (rewrite Z.mul_comm, Z.div_mul; lia).
  replace ((4 * nl - 4 * nr) / 4) with (nl - nr)
    by (rewrite <- Z.mul_sub_distr_l, Z.mul_comm, Z.div_mul; lia).
  unfold ECMA_BIG_UINT_BITWISE_AND, ECMA_BIG_UINT_BITWISE_OR.
  destruct (bitwise_borrow_loop op (bigint_digits lhs) (firstn (Z.to_nat nr) (bigint_digits rhs)) (Z.b2z dl') (Z.b2z dr'))
    as [[ds carry] rest] eqn:E.
  destruct (if op =? 0 then ([], []) else if 0 <? carry then decrease_digits rest else ([], rest))
    as [done rest'] eqn:Et.
  pose proof (bitwise_digits _ _ _ _ _ _ _ _ _ _ _ _ _ _ Hop Hspec E Et) as (Hok & L & V & Hlast & Hc & Lrest).
  pose proof (op_value _ _ _ _ _ _ _ _ _ Hspec) as Hval.
  destruct Hspec as [Hwl Hwr Hnl Hnr Hnr' _ Hany _].
  assert (Hmax : 4 * nl <= ECMA_BIGINT_MAX_SIZE).
  { pose proof (wf_max _ Hwl). unfold digits_size in *. destruct (op =? 0); lia. }
  apply wp_create_then; [intros _ | reflexivity | lia].
  set (all := (ds ++ done) ++ rest') in *.
  assert (Hs : digits_size all = 4 * nl) by (unfold digits_size; lia).
  assert (Hne : all <> []) by (intros Hnil; rewrite Hnil, (@zlength_nil Z) in L; destruct (op =? 0); lia).
  destruct (dl || dr) eqn:Ea; cbn [negb].
  - replace (if dl' then 1 else 0) with (Z.b2z dl') by now destruct dl'.
    replace (if dr' then 1 else 0) with (Z.b2z dr') by now destruct dr'. rewrite E.
    assert (Etail : (if negb (op =? 0) then
              if 0 <? carry then let (done, rest'') := decrease_digits (firstn (Z.to_nat (nl - nr)) rest) in (ds ++ done, rest'')
              else (ds, firstn (Z.to_nat (nl - nr)) rest)
            else (ds, [])) = (ds ++ done, rest')).
    { destruct (Z.eqb_spec op 0) as [->|Hnz]; cbn [negb] in *.
      - revert Et. intro_pair. now rewrite app_nil_r.
      - rewrite firstn_all2 by (specialize (Lrest Hnz); unfold zlength in Lrest; lia).
        destruct (0 <? carry); [now rewrite Et |]. revert Et. intro_pair. now rewrite app_nil_r. }
    cbv zeta. rewrite Etail. fold all. destruct inc; cbn [Z.b2z].
    + apply wp_fill_increase; try assumption. lia.
    + rewrite Z.add_0_r. destruct rest'; [now apply wp_normalize_if_zero |].
      wp_step. apply result_filled; try assumption. now apply Hlast.
  - destruct Hopt as [|[-> Hop3]]; [congruence |]. cbn [Z.b2z]. rewrite Z.add_0_r.
    assert (dl' = false /\ dr' = false) as [-> ->] by (destruct dl', dr'; easy). cbn [Z.b2z] in E.
    assert (Hrp : digits_ok (firstn (Z.to_nat nr) (bigint_digits rhs))).
    { pose proof (wf_digits _ Hwr) as H. rewrite <- (firstn_skipn (Z.to_nat nr)) in H. now apply Forall_app_inv in H. }
    rewrite bitwise_loop_borrow in E by (assumption || apply Hwl).
    revert E. rewrite !pair_equal_spec. intros [[E1 <-] E2]. cbn [Z.ltb Z.compare] in Et.
    destruct Hop as [->|[->|[->| ->]]]; [| | | easy]; cbn [Z.eqb Pos.eqb] in *; revert Et; intro_pair;
      unfold all in *; rewrite ?app_nil_r in *; clear all.
    + change Z.land with (bitwise_value 0). rewrite E1. now apply wp_normalize_if_zero.
    + change Z.lor with (bitwise_value 1). destruct (bitwise_loop (bitwise_value 1) _ _) as [ds0 rest0]. cbn [fst snd] in *. subst ds0 rest0.
      rewrite firstn_all2 by (specialize (Lrest ltac:(lia)); unfold zlength in Lrest; lia).
      wp_step. apply result_filled; try assumption. apply last_nonzero; try assumption.
      rewrite V, L, <- Hval. unfold decreased. cbn [Z.b2z]. rewrite !Z.sub_0_r, Hnl.
      eapply Z.le_trans; [apply digits_value_lower; apply Hwl |].
      apply lor_lower; [apply Z.lt_le_incl, wf_value_pos; assumption ..].
    + change Z.lxor with (bitwise_value 2). destruct (bitwise_loop (bitwise_value 2) _ _) as [ds0 rest0]. cbn [fst snd] in *. subst ds0 rest0.
      specialize (Lrest ltac:(lia)). rewrite firstn_all2 by (unfold zlength in Lrest; lia).
      destruct (Z.ltb_spec (4 * nr) (4 * nl)).
      * wp_step. apply result_filled; try assumption. apply Hlast.
        intros ->. rewrite (@zlength_nil Z) in Lrest. lia.
      * assert (rest = []) as -> by (destruct rest; [easy | rewrite zlength_cons in Lrest; pose proof (zlength_nonneg rest); lia]).
        rewrite app_nil_r in *. now apply wp_normalize_if_zero.
Qed.
End Bitwise.

(** ** Properties *)

Section Properties.
Context {HA : HeapAlloc}.

(** Ecma_big_uint_shift_left multiplies a magnitude by 2^n for every
    32-bit shift count, and refuses exactly the results beyond the size
    limit (memory permitting). *)
Theorem ecma_big_uint_shift_left_correct v n : big_uint_wf v -> 0 < n < B32 ->
  wp (ecma_big_uint_shift_left v n) (big_uint_result (big_uint_value v * 2 ^ n)).
Proof. apply wp_big_uint_shift_left. Qed.

(** Ecma_big_uint_shift_right divides a magnitude by 2^n rounding down,
    or, with increase_result, rounding up: the digits and bits shifted out are
    all inspected, and the rounded result may need one more digit. *)
Theorem ecma_big_uint_shift_right_correct v n increase_result : big_uint_wf v -> 0 < n < B32 ->
  wp (ecma_big_uint_shift_right v n increase_result)
     (big_uint_result (if increase_result then - (- big_uint_value v / 2 ^ n) else big_uint_value v / 2 ^ n)).
Proof. apply wp_big_uint_shift_round. Qed.

(** C32: ecma_big_uint_pow raises a magnitude to any 32-bit power from 2 on:
    32 rounds of the squaring loop suffice, the reference shared between
    result_p and square_p is dropped exactly once on every path (error paths
    included), and NULL means no memory or a result beyond the limit. *)
Theorem ecma_big_uint_pow_correct v n : big_uint_wf v -> 2 <= n < B32 ->
  wp (ecma_big_uint_pow v n) (big_uint_result (big_uint_value v ^ n)).
Proof. apply wp_big_uint_pow. Qed.

(** Ecma_big_uint_bitwise_op computes and, or, xor and and-not of two
    magnitudes, each optionally decreased by one first and the result
    optionally increased by one, as the numbers' binary representation
    defines them; operands of different sizes may be swapped or cropped
    without changing the result. *)
Theorem ecma_big_uint_bitwise_op_correct op decrease_left decrease_right increase_result left right :
  is_operation op -> big_uint_wf left -> big_uint_wf right ->
  decrease_left || decrease_right = true \/ (increase_result = false /\ op <> ECMA_BIG_UINT_BITWISE_AND_NOT) ->
  wp (ecma_big_uint_bitwise_op (bitwise_options op decrease_left decrease_right increase_result) left right)
     (big_uint_result (bitwise_value op (decreased left decrease_left) (decreased right decrease_right)
                       + Z.b2z increase_result)).
Proof. apply wp_big_uint_bitwise_op. Qed.
End Properties.

Lemma ecma_big_uint_shift_left_witness :
  @wp (CounterHeap true) _ (@ecma_big_uint_shift_left (CounterHeap true) (big_uint_of [3; 1]) 65)
    (@big_uint_result (CounterHeap true) ((3 + B32) * 2 ^ 65)).
Proof. apply (@ecma_big_uint_shift_left_correct (CounterHeap true) (big_uint_of [3; 1]) 65); [wf_of | lia]. Defined.

Lemma ecma_big_uint_shift_right_witness :
  @wp (CounterHeap true) _ (@ecma_big_uint_shift_right (CounterHeap true) (big_uint_of [1; 4]) 33 true)
    (@big_uint_result (CounterHeap true) (- (- (1 + 4 * B32) / 2 ^ 33))).
Proof. apply (@ecma_big_uint_shift_right_correct (CounterHeap true) (big_uint_of [1; 4]) 33 true); [wf_of | lia]. Defined.

Lemma ecma_big_uint_pow_witness :
  @wp (CounterHeap true) _ (@ecma_big_uint_pow (CounterHeap true) (big_uint_of [3]) 41)
    (@big_uint_result (CounterHeap true) (3 ^ 41)).
Proof. apply (@ecma_big_uint_pow_correct (CounterHeap true) (big_uint_of [3]) 41); [wf_of | lia]. Defined.

(** 6 & ~(12 - 1), increased by one *)
Lemma ecma_big_uint_bitwise_op_witness :
  @wp (CounterHeap true) _
    (@ecma_big_uint_bitwise_op (CounterHeap true) (bitwise_options ECMA_BIG_UINT_BITWISE_AND_NOT false true true)
       (big_uint_of [6]) (big_uint_of [12]))
    (@big_uint_result (CounterHeap true) 5).
Proof.
  apply (@ecma_big_uint_bitwise_op_correct (CounterHeap true) ECMA_BIG_UINT_BITWISE_AND_NOT false true true);
    [unfold is_operation, ECMA_BIG_UINT_BITWISE_AND_NOT; lia | wf_of | wf_of | now left].
Defined.
