(* ===== verification/BigUintDiv.v ===== *)
(** * Division of magnitudes

    ecma_big_uint_div_digit, ecma_big_uint_div_shift_left and
    ecma_big_uint_div_mod of src/jjs-core/ecma/operations/ecma-big-uint.c.
    The general division follows Knuth's algorithm D on a work buffer that
    holds the normalised dividend; a step replaces the window of the buffer
    under the divisor by the remainder and stores the quotient digit above it.

    The guard that corrects the estimated quotient digit (D3) compares with the
    second divisor digit where Knuth's algorithm takes the third digit of the
    dividend.  The division is proved correct for every run in which the coded
    guard never fires unless Knuth's does ([div_guard_sound], decidable); a
    run that violates it is exhibited. *)
From Stdlib Require Import ZArith List Lia Bool.
From S2P Require Import Prelude HeapIface BigUint BigUintBits.
Import ListNotations.
#[local] Open Scope Z_scope.
#[local] Open Scope heap_scope.

Definition ECMA_BIGINT_HIGH_DIGIT (digit : Z) : Z := u64 (Z.shiftl digit 32).

(** ** Division by one digit *)

(** The loop over the digits below the last one, from the most significant *)
Fixpoint div_digit_loop (rev_digits : list Z) (divisor_digit remainder : Z) (quotient : list Z) : list Z * Z :=
  match rev_digits with
  | [] => (quotient, remainder)
  | d :: rest =>
      let result := Z.lor d (u64 (Z.shiftl remainder (Z.shiftl 1 ECMA_BIGINT_DIGIT_SHIFT))) in
      div_digit_loop rest divisor_digit (u32 (result mod divisor_digit))
        (u32 (result / divisor_digit) :: quotient)
  end.

(** ** Algorithm D *)

(** The loop of step D3: the body runs at most twice, because result_mod grows
    by divisor_high, whose highest bit is set. *)
Fixpoint estimate_loop (fuel : nat) (result_div result_mod low_digits divisor_high divisor_low : Z) : Z :=
  match fuel with
  | O => result_div
  | S fuel' =>
      if Z.lor (ECMA_BIGINT_HIGH_DIGIT result_mod) divisor_low <? low_digits then
        let result_div := u32 (result_div - 1) in
        let result_mod := u32 (result_mod + divisor_high) in
        if result_mod <? divisor_high then result_div
        else estimate_loop fuel' result_div result_mod (u64 (low_digits - divisor_low)) divisor_high divisor_low
      else result_div
  end.

(** D3. [Calculate Q']: [u0] and [u1] are dividend_end_p[0], dividend_end_p[-1]. *)
Definition div_estimate (u0 u1 divisor_high divisor_low : Z) : Z :=
  if u0 <? divisor_high then
    let dividend := Z.lor u1 (ECMA_BIGINT_HIGH_DIGIT u0) in
    let result_div := u32 (dividend / divisor_high) in
    let result_mod := u32 (dividend mod divisor_high) in
    estimate_loop 3 result_div result_mod (u64 (result_div * divisor_low)) divisor_high divisor_low
  else
    let result_div := DIGIT_MAX in
    let result_mod := u32 (u1 + divisor_high) in
    if result_mod <? divisor_high then result_div
    else estimate_loop 3 result_div result_mod (u64 (result_div * divisor_low)) divisor_high divisor_low.

(** One digit of D4. [Multiply and subtract] *)
Definition mul_sub_step (value source result_div carry : Z) : Z * Z :=
  let multiply_result := u64 (source * result_div) in
  let new_carry := u32 (Z.shiftr multiply_result 32) in
  let multiply_result_low := u32 multiply_result in
  let new_carry := if value <? multiply_result_low then u32 (new_carry + 1) else new_carry in
  let value := u32 (value - multiply_result_low) in
  let new_carry := if value <? carry then u32 (new_carry + 1) else new_carry in
  (u32 (value - carry), new_carry).

(** Over the divisor's digits: the digits written, the carry, the rest of the window *)
Fixpoint mul_sub_loop (window divisor : list Z) (result_div carry : Z) {struct divisor} : list Z * Z * list Z :=
  match divisor, window with
  | s :: divisor', value :: window' =>
      let (value', carry') := mul_sub_step value s result_div carry in
      let '(ds, carry'', rest) := mul_sub_loop window' divisor' result_div carry' in
      (value' :: ds, carry'', rest)
  | _, _ => ([], carry, window)
  end.

(** D3 - D6 on the window from dividend_p to dividend_end_p: the digits that
    replace it below dividend_end_p, and the quotient digit stored there. *)
Definition div_window (window divisor : list Z) : list Z * Z :=
  let n := length divisor in
  let divisor_high := nth (n - 1) divisor 0 in
  let divisor_low := nth (n - 2) divisor 0 in
  let result_div := div_estimate (nth n window 0) (nth (n - 1) window 0) divisor_high divisor_low in
  let '(ds, carry, rest) := mul_sub_loop window divisor result_div 0 in
  let negative_result := hd 0 rest <? carry in
  if negative_result then
    let '(ds', _, _) := add_loop ds divisor 0 in (ds', u32 (result_div - 1))
  else (ds, result_div).

(** One iteration, with dividend_p = buffer_p + j *)
Definition div_step (buffer divisor : list Z) (j : nat) : list Z :=
  let n := length divisor in
  let (ds, result_div) := div_window (firstn (S n) (skipn j buffer)) divisor in
  firstn j buffer ++ ds ++ [result_div] ++ skipn (j + S n) buffer.

(** The iterations with dividend_p = buffer_p + (count - 1), ..., buffer_p *)
Fixpoint div_loop (count : nat) (buffer divisor : list Z) : list Z :=
  match count with
  | O => buffer
  | S j => div_loop j (div_step buffer divisor j) divisor
  end.

(** while (source_end_p > source_p && *source_end_p == 0) source_end_p--;
    [k] is source_end_p - source_p *)
Fixpoint remainder_end (buffer : list Z) (k : nat) : nat :=
  match k with
  | O => O
  | S k' => if nth k buffer 0 =? 0 then remainder_end buffer k' else k
  end.

(** The digits of the remainder: the window shifted back to the right *)
Definition remainder_digits (buffer : list Z) (divisor_length : nat) (shift_left : Z) : list Z :=
  let k := remainder_end buffer (divisor_length - 1) in
  let top := nth k buffer 0 in
  let '(count, above) := if negb (Z.shiftr top shift_left =? 0) then (S k, 0) else (k, top) in
  if 0 <? shift_left
  then shift_right_loop (rev (firstn count buffer)) shift_left (u32 (Z.shiftl above (32 - shift_left))) []
  else firstn count buffer.

(** The digits of the quotient: those above the remainder, without a zero last digit *)
Definition quotient_digits (buffer : list Z) (divisor_length dividend_length : nat) : list Z :=
  let count := if negb (nth dividend_length buffer 0 =? 0) then S dividend_length else dividend_length in
  skipn divisor_length (firstn count buffer).

Section Operations.
Context {HA : HeapAlloc}.

Definition ecma_big_uint_div_digit (left : ecma_extended_primitive_t) (divisor_digit : Z) (is_mod : bool) : M bigint_ptr :=
  let left_size := ECMA_BIGINT_GET_SIZE left in
  let last_digit := ECMA_BIGINT_GET_LAST_DIGIT left in
  let remainder := last_digit mod divisor_digit in
  let last_digit := last_digit / divisor_digit in
  let '(quotient, remainder) :=
    div_digit_loop (rev (removelast (bigint_digits left))) divisor_digit remainder
      (if last_digit =? 0 then [] else [last_digit]) in
  if negb is_mod then
    r <- ecma_bigint_create (if last_digit =? 0 then u32 (left_size - sizeof_digit) else left_size);;
    match r with
    | None => ret BIGINT_NULL
    | Some r => ret (BIGINT_PTR (set_digits r quotient))
    end
  else if remainder =? 0 then ret BIGINT_POINTER_TO_ZERO
  else
    r <- ecma_bigint_create sizeof_digit;;
    match r with
    | None => ret BIGINT_NULL
    | Some r => ret (BIGINT_PTR (set_digits r [remainder]))
    end.

(** The digits of the newly allocated buffer *)
Definition ecma_big_uint_div_shift_left (v : ecma_extended_primitive_t) (shift_left : Z) (extend : bool)
    : M (option (list Z)) :=
  let size := ECMA_BIGINT_GET_SIZE v in
  let size := if extend then u32 (size + sizeof_digit) else size in
  ok <- jmem_heap_alloc_block_null_on_error size;;
  ret (if negb ok then None
       else if shift_left =? 0 then Some (bigint_digits v ++ [0])
       else
         let (ds, carry) := shift_left_loop (bigint_digits v) shift_left 0 in
         Some (if extend then ds ++ [carry] else ds)).

Definition ecma_big_uint_div_mod (dividend divisor : ecma_extended_primitive_t) (is_mod : bool) : M bigint_ptr :=
  let divisor_size := ECMA_BIGINT_GET_SIZE divisor in
  if divisor_size =? sizeof_digit then
    ecma_big_uint_div_digit dividend (hd 0 (bigint_digits divisor)) is_mod
  else
    let shift_left := ecma_big_uint_count_leading_zero (ECMA_BIGINT_GET_LAST_DIGIT divisor) in
    buffer_p <- ecma_big_uint_div_shift_left dividend shift_left true;;
    match buffer_p with
    | None => ret BIGINT_NULL
    | Some buffer =>
        let dividend_size := ECMA_BIGINT_GET_SIZE dividend in
        divisor_p <- (if 0 <? shift_left then ecma_big_uint_div_shift_left divisor shift_left false
                      else ret (Some (bigint_digits divisor)));;
        result_p <-
          match divisor_p with
          | None => ret BIGINT_NULL
          | Some divisor_digits =>
              let m := Z.to_nat (dividend_size / sizeof_digit) in
              let n := Z.to_nat (divisor_size / sizeof_digit) in
              let buffer := div_loop (S (m - n)) buffer divisor_digits in
              let source :=
                if is_mod then remainder_digits buffer n shift_left else quotient_digits buffer n m in
              match source with
              | [] => ret BIGINT_POINTER_TO_ZERO
              | _ =>
                  r <- ecma_bigint_create (digits_size source);;
                  match r with
                  | None => ret BIGINT_NULL
                  | Some r => ret (BIGINT_PTR (set_digits r source))
                  end
              end
          end;;
        jmem_heap_free_block (dividend_size + sizeof_digit);;;
        match divisor_p with
        | Some _ =>
            if 0 <? shift_left then jmem_heap_free_block divisor_size;;; ret result_p else ret result_p
        | None => ret result_p
        end
    end.
End Operations.

(** ** Division by one digit *)

Lemma two_digits_lor low high : is_u32 low -> is_u32 high ->
  Z.lor low (u64 (Z.shiftl high 32)) = low + B32 * high.
Proof.
  intros Hl Hh. unfold is_u32, u64 in *. rewrite Z.shiftl_mul_pow2 by lia. change (2 ^ 32) with B32.
  rewrite Z.mod_small by lia. rewrite Z.lor_comm. change B32 with (2 ^ 32) in *.
  rewrite lor_mul_low by lia. lia.
Qed.

Lemma div_digit_step low remainder divisor :
  is_u32 low -> 0 < divisor < B32 -> 0 <= remainder < divisor ->
  let result := Z.lor low (u64 (Z.shiftl remainder (Z.shiftl 1 ECMA_BIGINT_DIGIT_SHIFT))) in
  let q := u32 (result / divisor) in
  let r := u32 (result mod divisor) in
  low + B32 * remainder = divisor * q + r /\ is_u32 q /\ 0 <= r < divisor.
Proof.
  intros Hl Hd Hr. cbv zeta. change (Z.shiftl 1 ECMA_BIGINT_DIGIT_SHIFT) with 32.
  rewrite two_digits_lor by (unfold is_u32 in *; lia). unfold is_u32 in *.
  set (x := low + B32 * remainder). assert (Hx : 0 <= x < divisor * B32) by (unfold x; nia).
  pose proof (Z.div_mod x divisor ltac:(lia)). pose proof (Z.mod_pos_bound x divisor ltac:(lia)).
  assert (0 <= x / divisor < B32) by (split; [apply Z.div_pos | apply Z.div_lt_upper_bound]; lia).
  rewrite !u32_small by (unfold is_u32; lia). lia.
Qed.

Lemma div_digit_loop_spec divisor : 0 < divisor < B32 -> forall rds, digits_ok (rev rds) ->
  forall remainder quotient, 0 <= remainder < divisor ->
  exists qs r, div_digit_loop rds divisor remainder quotient = (qs ++ quotient, r)
    /\ digits_value (rev rds) + B32 ^ zlength rds * remainder = divisor * digits_value qs + r
    /\ digits_ok qs /\ zlength qs = zlength rds /\ 0 <= r < divisor.
Proof.
  intros Hd rds. induction rds as [|d rds IH]; intros Hok remainder quotient Hr; cbn [div_digit_loop rev].
  { exists [], remainder. rewrite (@zlength_nil Z). cbn [digits_value]. splits; try reflexivity; try lia. constructor. }
  cbn [rev] in Hok. apply digits_ok_snoc in Hok as [Hok Hv].
  destruct (div_digit_step d remainder divisor Hv Hd Hr) as (V & Hq & Hr').
  set (q := u32 (_ / divisor)) in *. set (r := u32 (_ mod divisor)) in *. clearbody q r.
  destruct (IH Hok r (q :: quotient) Hr') as (qs & r' & -> & V' & Hqs & L & Hr'').
  exists (qs ++ [q]), r'. rewrite <- app_assoc. splits; try assumption; try reflexivity; try lia.
  - rewrite !digits_value_snoc, zlength_cons, pow32_succ, L by apply zlength_nonneg.
    replace (zlength (rev rds)) with (zlength rds) by (unfold zlength; now rewrite length_rev).
    set (p := B32 ^ zlength rds) in *. nia.
  - apply Forall_app. split; [assumption | now constructor].
  - rewrite zlength_snoc, zlength_cons. lia.
Qed.

(** Quotient and remainder from the equation the loops maintain *)
Lemma div_mod_unique_pos a b q r : 0 <= r < b -> a = b * q + r -> a / b = q /\ a mod b = r.
Proof.
  intros Hr ->. split; [symmetry; apply (Z.div_unique _ _ q r) | symmetry; apply (Z.mod_unique _ _ q r)]; lia.
Qed.

(** The whole digit run divided, most significant digit first *)
Lemma div_digit_run v divisor quotient remainder : big_uint_wf v -> 0 < divisor < B32 ->
  let last_digit := ECMA_BIGINT_GET_LAST_DIGIT v in
  div_digit_loop (rev (removelast (bigint_digits v))) divisor (last_digit mod divisor)
    (if last_digit / divisor =? 0 then [] else [last_digit / divisor]) = (quotient, remainder) ->
  digits_value quotient = big_uint_value v / divisor /\ remainder = big_uint_value v mod divisor
  /\ digits_ok quotient
  /\ zlength quotient = zlength (bigint_digits v) - (if last_digit / divisor =? 0 then 1 else 0)
  /\ (last_digit / divisor <> 0 -> last quotient 0 <> 0).
Proof.
  intros Hv Hd. cbv zeta. unfold ECMA_BIGINT_GET_LAST_DIGIT, big_uint_value.
  pose proof (wf_digits _ Hv) as Hok. pose proof (wf_last _ Hv) as Hl.
  set (ds := bigint_digits v) in *. clearbody ds. snoc_view ds low d (last_nonzero_nonempty _ Hl).
  rewrite last_last, removelast_last in *. apply digits_ok_snoc in Hok as [Hok Hd0]. unfold is_u32 in Hd0.
  pose proof (Z.div_mod d divisor ltac:(lia)) as Ed. pose proof (Z.mod_pos_bound d divisor ltac:(lia)) as Hm.
  assert (Hq : 0 <= d / divisor < B32) by (split; [apply Z.div_pos | apply Z.div_lt_upper_bound]; nia).
  destruct (div_digit_loop_spec divisor Hd (rev low)) with (remainder := d mod divisor)
    (quotient := if d / divisor =? 0 then [] else [d / divisor]) as (qs & r & -> & V & Hqs & L & Hr);
    [now rewrite rev_involutive | assumption |].
  intro_pair. rewrite rev_involutive in V.
  replace (zlength (rev low)) with (zlength low) in * by (unfold zlength; now rewrite length_rev).
  assert (Hval : digits_value (qs ++ if d / divisor =? 0 then [] else [d / divisor])
                 = digits_value qs + B32 ^ zlength low * (d / divisor)).
  { destruct (Z.eqb_spec (d / divisor) 0) as [->|]; [rewrite app_nil_r; lia | now rewrite digits_value_snoc, L]. }
  rewrite Hval, digits_value_snoc, zlength_snoc.
  destruct (div_mod_unique_pos (digits_value low + B32 ^ zlength low * d) divisor
              (digits_value qs + B32 ^ zlength low * (d / divisor)) r) as [-> ->]; [lia | nia |].
  splits; try reflexivity.
  - apply Forall_app. split; [assumption |]. destruct (_ =? 0); repeat constructor; unfold is_u32; lia.
  - destruct (_ =? 0); rewrite ?app_nil_r, ?zlength_snoc; lia.
  - intros Hnz. destruct (Z.eqb_spec (d / divisor) 0); [easy | now rewrite last_last].
Qed.

Section DivDigit.
Context {HA : HeapAlloc}.

Lemma wp_big_uint_div_digit v divisor is_mod : big_uint_wf v -> 0 < divisor < B32 -> divisor <= big_uint_value v ->
  wp (ecma_big_uint_div_digit v divisor is_mod)
     (big_uint_result (if is_mod then big_uint_value v mod divisor else big_uint_value v / divisor)).
Proof.
  intros Hv Hd Hle. unfold ecma_big_uint_div_digit.
  destruct (div_digit_loop _ _ _ _) as [quotient remainder] eqn:E.
  apply div_digit_run in E as (Vq & -> & Hok & L & Hlast); [| assumption ..].
  pose proof (Z.mod_pos_bound (big_uint_value v) divisor ltac:(lia)) as Hr.
  destruct (wf_bounds _ Hv) as (_ & Hpos & Hne & Hlo & Hhi). pose proof (zlength_pos _ Hne) as Hlen.
  destruct is_mod; cbn [negb].
  - destruct (Z.eqb_spec (big_uint_value v mod divisor) 0) as [->|]; [wp_step; easy |].
    apply wp_create_digits with (ds := [big_uint_value v mod divisor]); try reflexivity.
    + repeat constructor; lia.
    + assumption.
    + cbn [digits_value]. lia.
  - pose proof (wf_max _ Hv) as Hmax. unfold digits_size, ECMA_BIGINT_MAX_SIZE in Hmax.
    apply wp_create_digits with (ds := quotient); try reflexivity; try assumption.
    + rewrite (wf_size _ Hv). unfold digits_size. rewrite L.
      destruct (_ =? 0); [rewrite u32_small; unfold is_u32 |]; lia.
    + destruct (Z.eqb_spec (ECMA_BIGINT_GET_LAST_DIGIT v / divisor) 0); [| now apply Hlast].
      assert (0 < digits_value quotient) by (rewrite Vq; apply Z.div_str_pos; lia).
      assert (Hqne : quotient <> []) by (intros ->; cbn [digits_value] in *; lia).
      apply last_nonzero; try assumption. rewrite Vq, L. apply zlength_pos in Hqne.
      apply Z.div_le_lower_bound; [lia |]. eapply Z.le_trans; [| apply Hlo].
      pose proof (pow32_succ (zlength (bigint_digits v) - 1 - 1) ltac:(lia)) as Hp.
      pose proof (pow32_pos (zlength (bigint_digits v) - 1 - 1) ltac:(lia)).
      replace (1 + (zlength (bigint_digits v) - 1 - 1)) with (zlength (bigint_digits v) - 1) in Hp by lia. nia.
Qed.
End DivDigit.

(** ** Step D3: the estimated quotient digit *)

(** Every time the coded guard fires, Knuth's guard (with the third dividend
    digit [u2]) fires too. *)
Fixpoint estimate_loop_sound (fuel : nat) (result_div result_mod low_digits divisor_high divisor_low u2 : Z) : bool :=
  match fuel with
  | O => true
  | S fuel' =>
      if Z.lor (ECMA_BIGINT_HIGH_DIGIT result_mod) divisor_low <? low_digits then
        (Z.lor (ECMA_BIGINT_HIGH_DIGIT result_mod) u2 <? low_digits)
        && let result_mod := u32 (result_mod + divisor_high) in
           (result_mod <? divisor_high)
           || estimate_loop_sound fuel' (u32 (result_div - 1)) result_mod (u64 (low_digits - divisor_low))
                divisor_high divisor_low u2
      else true
  end.

Definition estimate_sound (u0 u1 u2 divisor_high divisor_low : Z) : bool :=
  if u0 <? divisor_high then
    let dividend := Z.lor u1 (ECMA_BIGINT_HIGH_DIGIT u0) in
    let result_div := u32 (dividend / divisor_high) in
    estimate_loop_sound 3 result_div (u32 (dividend mod divisor_high)) (u64 (result_div * divisor_low))
      divisor_high divisor_low u2
  else
    let result_mod := u32 (u1 + divisor_high) in
    (result_mod <? divisor_high)
    || estimate_loop_sound 3 DIGIT_MAX result_mod (u64 (DIGIT_MAX * divisor_low)) divisor_high divisor_low u2.

Section Estimate.
(** The window is [(u * B32 + u2) * p + ul] and the divisor
    [(v1 * B32 + v0) * p + vl], for the power [p] of the digits below; [q] is
    the quotient digit to find. *)
Context (u u2 ul v1 v0 vl p q : Z).
Context (Hp : 0 < p) (Hul : 0 <= ul < p) (Hvl : 0 <= vl < p).
Context (Hu2 : is_u32 u2) (Hv0 : is_u32 v0) (Hv1 : 2147483648 <= v1 < B32).
Let W := (u * B32 + u2) * p + ul.
Let D := (v1 * B32 + v0) * p + vl.
Context (Hq : 0 <= q < B32) (Hlow : q * D <= W) (Hhigh : W < (q + 1) * D).

Lemma divisor_pos : 0 < D.
Proof. unfold D, is_u32 in *. assert (0 < (v1 * B32 + v0) * p) by (apply Z.mul_pos_pos; lia). lia. Qed.

Lemma below_quotient a : a * D <= W -> a <= q.
Proof.
  intros H. pose proof divisor_pos. apply Z.lt_succ_r, (Z.mul_lt_mono_pos_r D); [assumption |].
  unfold Z.succ. lia.
Qed.

Lemma above_quotient a : W < a * D -> q < a.
Proof. intros H. pose proof divisor_pos. apply (Z.mul_lt_mono_pos_r D); [assumption | lia]. Qed.

(** Comparing a multiple of the divisor with the window, on the high digits *)
Lemma multiple_le a : 0 <= a -> a * (v1 * B32 + v0) + a <= u * B32 + u2 -> a * D <= W.
Proof.
  intros Ha H. unfold D, W. apply (Z.mul_le_mono_nonneg_r _ _ p) in H; [| lia].
  assert (a * vl <= a * p) by (apply Z.mul_le_mono_nonneg_l; lia). lia.
Qed.

Lemma multiple_gt a : 0 <= a -> u * B32 + u2 + 1 <= a * (v1 * B32 + v0) -> W < a * D.
Proof.
  intros Ha H. unfold D, W. apply (Z.mul_le_mono_nonneg_r _ _ p) in H; [| lia].
  assert (0 <= a * vl) by (apply Z.mul_nonneg_nonneg; lia). lia.
Qed.

Lemma estimate_quiet qh r : 0 <= qh < B32 -> qh * v1 + r = u -> 0 <= r ->
  qh * v0 <= r * B32 + v0 -> qh <= q + 1.
Proof.
  intros Hqh Hr Hr0 Hg. unfold is_u32 in *. destruct (Z.eq_dec qh 0) as [->|]; [lia |].
  enough (qh - 1 <= q) by lia. apply below_quotient, multiple_le; [lia |]. rewrite <- Hr. lia.
Qed.

Lemma estimate_fires qh r : 0 <= qh -> qh * v1 + r = u -> r * B32 + u2 < qh * v0 -> q < qh.
Proof. intros Hqh Hr Hg. apply above_quotient, multiple_gt; [lia |]. rewrite <- Hr. lia. Qed.

Lemma estimate_overflow qh r : 0 <= qh < B32 -> qh * v1 + r = u -> B32 <= r -> qh <= q.
Proof.
  intros Hqh Hr Hg. apply below_quotient, multiple_le; [lia |]. rewrite <- Hr. unfold is_u32 in *.
  assert (qh * v0 <= qh * (B32 - 1)) by (apply Z.mul_le_mono_nonneg_l; lia). lia.
Qed.

Lemma high_lor r d : is_u32 r -> is_u32 d -> Z.lor (ECMA_BIGINT_HIGH_DIGIT r) d = r * B32 + d.
Proof. intros. unfold ECMA_BIGINT_HIGH_DIGIT. rewrite Z.lor_comm, two_digits_lor by assumption. lia. Qed.

Lemma estimate_loop_spec fuel : (2 <= fuel)%nat -> forall qh r,
  is_u32 qh -> is_u32 r -> qh * v1 + r = u -> q <= qh ->
  estimate_loop_sound fuel qh r (qh * v0) v1 v0 u2 = true ->
  let qh' := estimate_loop fuel qh r (qh * v0) v1 v0 in
  q <= qh' <= q + 1 /\ is_u32 qh'.
Proof.
  assert (Hstep : forall fuel, (forall qh r, is_u32 qh -> is_u32 r -> v1 <= r -> qh * v1 + r = u -> q <= qh ->
            estimate_loop_sound fuel qh r (qh * v0) v1 v0 u2 = true ->
            q <= estimate_loop fuel qh r (qh * v0) v1 v0 <= q + 1 /\ is_u32 (estimate_loop fuel qh r (qh * v0) v1 v0))
          -> forall qh r, is_u32 qh -> is_u32 r -> qh * v1 + r = u -> q <= qh ->
            estimate_loop_sound (S fuel) qh r (qh * v0) v1 v0 u2 = true ->
            q <= estimate_loop (S fuel) qh r (qh * v0) v1 v0 <= q + 1
            /\ is_u32 (estimate_loop (S fuel) qh r (qh * v0) v1 v0)).
  { intros f IH qh r Hqh Hr E Hge. cbn [estimate_loop estimate_loop_sound].
    rewrite !high_lor by assumption. pose proof Hqh as Hqh'. unfold is_u32 in Hqh'.
    destruct (Z.ltb_spec (r * B32 + v0) (qh * v0)) as [Hg|Hg].
    2: { intros _. split; [| assumption]. split; [assumption | now apply (estimate_quiet qh r); try apply Hr]. }
    intros [Hk Hs]%andb_prop. apply Z.ltb_lt in Hk.
    assert (Hlt : q < qh) by now apply (estimate_fires qh r). 
    rewrite (u32_small (qh - 1)) in * by (unfold is_u32; lia). unfold is_u32 in Hr, Hv0.
    assert (Hl64 : u64 (qh * v0 - v0) = (qh - 1) * v0).
    { pose proof (mul_digits_bound (qh - 1) v0). unfold is_u32, u64 in *. rewrite Z.mod_small; lia. }
    rewrite Hl64 in *. assert (E' : (qh - 1) * v1 + (r + v1) = u) by lia.
    destruct (u32_add_cases r v1) as [[Hlo Eu] | [Hov Eu]]; try (unfold is_u32; lia); rewrite Eu in *.
    - destruct (Z.ltb_spec (r + v1) v1); [lia |]. cbn [orb] in Hs. apply IH; try assumption; unfold is_u32; lia.
    - destruct (Z.ltb_spec (r + v1 - B32) v1); [| lia].
      assert (qh - 1 <= q) by (apply (estimate_overflow (qh - 1) (r + v1)); lia). unfold is_u32. lia. }
  intros Hfuel. destruct fuel as [|[|fuel]]; [lia | lia |]. clear Hfuel.
  assert (Hend : forall qh r, is_u32 qh -> is_u32 r -> v1 <= r -> qh * v1 + r = u -> q <= qh ->
            estimate_loop_sound (S fuel) qh r (qh * v0) v1 v0 u2 = true ->
            q <= estimate_loop (S fuel) qh r (qh * v0) v1 v0 <= q + 1
            /\ is_u32 (estimate_loop (S fuel) qh r (qh * v0) v1 v0)).
  { intros qh r Hqh Hr Hbig E Hge.
    cbn [estimate_loop estimate_loop_sound]. rewrite !high_lor by assumption.
    destruct (Z.ltb_spec (r * B32 + v0) (qh * v0)) as [Hg|Hg].
    2: { intros _. split; [| assumption]. split; [assumption | apply (estimate_quiet qh r); try apply Hr; assumption]. }
    intros [Hk _]%andb_prop. apply Z.ltb_lt in Hk. unfold is_u32 in *.
    assert (Hlt : q < qh) by (apply (estimate_fires qh r); lia).
    rewrite (u32_small (qh - 1)) by (unfold is_u32; lia).
    destruct (u32_add_cases r v1) as [[Hlo _] | [Hov ->]]; try (unfold is_u32; lia).
    destruct (Z.ltb_spec (r + v1 - B32) v1); [| lia].
    assert (qh - 1 <= q) by (apply (estimate_overflow (qh - 1) (r + v1)); lia). lia. }
  intros qh r. cbv zeta. now apply Hstep.
Qed.
End Estimate.

Lemma div_estimate_spec u0 u1 u2 ul v1 v0 vl p q :
  let W := ((u0 * B32 + u1) * B32 + u2) * p + ul in
  let D := (v1 * B32 + v0) * p + vl in
  0 < p -> 0 <= ul < p -> 0 <= vl < p -> is_u32 u0 -> is_u32 u1 -> is_u32 u2 -> is_u32 v0 ->
  2147483648 <= v1 < B32 -> 0 <= q < B32 -> q * D <= W < (q + 1) * D -> W < B32 * D ->
  estimate_sound u0 u1 u2 v1 v0 = true ->
  q <= div_estimate u0 u1 v1 v0 <= q + 1 /\ is_u32 (div_estimate u0 u1 v1 v0).
Proof.
  intros W D Hp Hul Hvl Hu0 Hu1 Hu2 Hv0 Hv1 Hq [Hlow Hhigh] HB. unfold estimate_sound, div_estimate.
  assert (Hqv : q * v1 <= u0 * B32 + u1).
  { apply Z.nlt_ge. intros Hlt. enough (W < q * D) by lia.
    apply (multiple_gt (u0 * B32 + u1) u2 ul v1 v0 vl p); unfold is_u32 in *; try assumption; lia. }
  assert (Hu64 : forall qh, is_u32 qh -> u64 (qh * v0) = qh * v0).
  { intros qh Hqh. pose proof (mul_digits_bound qh v0 Hqh Hv0). unfold u64. rewrite Z.mod_small; lia. }
  destruct (Z.ltb_spec u0 v1) as [Hlt|Hge].
  - unfold ECMA_BIGINT_HIGH_DIGIT. rewrite two_digits_lor by assumption. unfold is_u32 in *.
    set (x := u1 + B32 * u0). replace (u0 * B32 + u1) with x in * by (unfold x; lia).
    pose proof (Z.div_mod x v1 ltac:(lia)). pose proof (Z.mod_pos_bound x v1 ltac:(lia)).
    assert (0 <= x / v1 < B32) by (split; [apply Z.div_pos | apply Z.div_lt_upper_bound]; unfold x; lia).
    assert (q <= x / v1) by (apply Z.div_le_lower_bound; lia).
    rewrite !u32_small by (unfold is_u32; lia). rewrite Hu64 by (unfold is_u32; lia).
    intros Hs. now apply (estimate_loop_spec x u2 ul v1 v0 vl p q) with (fuel := 3%nat); unfold is_u32; try lia.
  - assert (u0 = v1) as ->.
    { enough (u0 < v1 + 1) by lia. apply Z.nle_gt. intros Hbig. unfold W, D, is_u32 in *.
      assert ((v1 * B32 + v0 + 1) * B32 * p <= ((u0 * B32 + u1) * B32 + u2) * p)
        by (apply Z.mul_le_mono_nonneg_r; lia). lia. }
    rewrite Hu64 by (unfold is_u32, DIGIT_MAX; lia).
    assert (Hdm : q <= DIGIT_MAX /\ is_u32 DIGIT_MAX) by (unfold DIGIT_MAX, is_u32; lia).
    assert (Hr : DIGIT_MAX * v1 + (u1 + v1) = v1 * B32 + u1) by (unfold DIGIT_MAX; lia).
    unfold is_u32 in Hu1.
    destruct (u32_add_cases u1 v1) as [[Hlo ->] | [Hov ->]]; try (unfold is_u32; lia).
    + destruct (Z.ltb_spec (u1 + v1) v1); [lia |]. cbn [orb]. intros Hs.
      now apply (estimate_loop_spec (v1 * B32 + u1) u2 ul v1 v0 vl p q) with (fuel := 3%nat); unfold is_u32; try lia.
    + destruct (Z.ltb_spec (u1 + v1 - B32) v1); [| lia]. intros _.
      assert (DIGIT_MAX <= q); [| destruct Hdm; split; [lia | assumption]].
      apply (estimate_overflow (v1 * B32 + u1) u2 ul v1 v0 vl p q) with (r := u1 + v1); unfold is_u32, DIGIT_MAX in *; try assumption; lia.
Qed.

(** ** Steps D4 and D6 *)

Lemma mul_sub_step_spec value s q carry value' carry' :
  is_u32 value -> is_u32 s -> is_u32 q -> is_u32 carry ->
  mul_sub_step value s q carry = (value', carry') ->
  value' - B32 * carry' = value - s * q - carry /\ is_u32 value' /\ is_u32 carry'.
Proof.
  intros Hv Hs Hq Hc. unfold mul_sub_step. pose proof (mul_digits_bound s q Hs Hq) as Hp.
  destruct (two_digit_low_high _ Hp) as (l & h & -> & -> & E & Hl & Hh & Hx & Hy).
  set (p := s * q) in *. clearbody p.
  word_cases; intro_pair; word_bounds; lia.
Qed.

Lemma mul_sub_loop_spec q : is_u32 q -> forall divisor, digits_ok divisor -> forall window carry ds carry' rest,
  digits_ok window -> zlength divisor <= zlength window -> is_u32 carry ->
  mul_sub_loop window divisor q carry = (ds, carry', rest) ->
  exists pre, window = pre ++ rest /\ zlength pre = zlength divisor
    /\ digits_value ds - B32 ^ zlength divisor * carry' = digits_value pre - digits_value divisor * q - carry
    /\ digits_ok ds /\ zlength ds = zlength divisor /\ is_u32 carry'.
Proof.
  intros Hq. induction 1 as [|s divisor Hs Hok IH]; intros window carry ds carry' rest Hw Hlen Hc; cbn [mul_sub_loop].
  { intro_triple. exists []. rewrite (@zlength_nil Z). cbn [digits_value app].
    splits; try reflexivity; try lia; try constructor; assumption || apply Hc. }
  destruct window as [|v window]; [rewrite zlength_cons, (@zlength_nil Z) in Hlen; pose proof (zlength_nonneg divisor); lia |].
  inversion_clear Hw as [|? ? Hv Hw']. rewrite !zlength_cons in Hlen.
  destruct (mul_sub_step v s q carry) as [v' c'] eqn:Es.
  apply mul_sub_step_spec in Es as (V & Hv' & Hc'); try assumption.
  destruct (mul_sub_loop window divisor q c') as [[ds' c''] rest'] eqn:E. intro_triple.
  apply IH in E as (pre & -> & Lp & V' & Hds & Ld & Hc''); try assumption; try lia.
  exists (v :: pre). rewrite !zlength_cons, pow32_succ by apply zlength_nonneg. cbn [digits_value].
  splits; try reflexivity; try assumption; try lia; try apply Hc''.
  now apply Forall_cons.
Qed.

(** ** One iteration *)

Definition div_guard_sound (window divisor : list Z) : bool :=
  let n := length divisor in
  estimate_sound (nth n window 0) (nth (n - 1) window 0) (nth (n - 2) window 0)
    (nth (n - 1) divisor 0) (nth (n - 2) divisor 0).

(** A normalised divisor of at least two digits *)
Record normalised (divisor : list Z) : Prop := {
  norm_ok : digits_ok divisor;
  norm_length : (2 <= length divisor)%nat;
  norm_high : 2147483648 <= last divisor 0
}.

Lemma split_top2 (l : list Z) : (2 <= length l)%nat -> exists low b a, l = low ++ [b; a].
Proof.
  intros H. destruct (@exists_last _ l) as (l1 & a & ->); [intros ->; cbn in H; lia |].
  rewrite length_app in H. cbn in H. destruct (@exists_last _ l1) as (low & b & ->); [intros ->; cbn in H; lia |].
  exists low, b, a. now rewrite <- app_assoc.
Qed.

Lemma nth_top (low tail : list Z) i j : j = (length low + i)%nat -> nth j (low ++ tail) 0 = nth i tail 0.
Proof. intros ->. rewrite app_nth2 by lia. f_equal. lia. Qed.

(** The window and the divisor as the estimate sees them *)
Lemma div_window_estimate window divisor q :
  normalised divisor -> digits_ok window -> length window = S (length divisor) ->
  digits_value window < B32 * digits_value divisor -> div_guard_sound window divisor = true ->
  q = digits_value window / digits_value divisor ->
  let n := length divisor in
  let qh := div_estimate (nth n window 0) (nth (n - 1) window 0) (nth (n - 1) divisor 0) (nth (n - 2) divisor 0) in
  q <= qh <= q + 1 /\ is_u32 qh.
Proof.
  intros [Hok Hlen Hhigh] Hw Lw HB Hs ->. unfold div_guard_sound in Hs. cbv zeta in *.
  assert (HD : 0 < digits_value divisor) by (apply digits_value_pos; [assumption | lia]).
  pose proof (digits_value_bound _ Hw) as [HW0 _].
  destruct (split_top2 divisor Hlen) as (dlow & v0 & v1 & ->).
  destruct window as [|w0 window]; [cbn in Lw; lia |].
  destruct (split_top2 (w0 :: window)) as (wlow' & u1 & u0 & Ew); [rewrite Lw; lia |]. rewrite Ew in *. clear Ew w0 window.
  rewrite !length_app in Lw. cbn [length] in Lw.
  destruct (@exists_last _ wlow') as (wlow & u2 & ->); [intros ->; cbn in Lw; lia |].
  rewrite length_app in Lw. cbn [length] in Lw. assert (Ll : length wlow = length dlow) by lia.
  rewrite <- app_assoc in *. cbn [app] in *.
  rewrite !length_app in *. cbn [length] in *. rewrite last_app_nonempty in Hhigh by easy. cbn [last] in Hhigh.
  rewrite (nth_top wlow _ 2), (nth_top wlow _ 1), (nth_top wlow _ 0) in Hs by lia.
  rewrite (nth_top wlow _ 2), (nth_top wlow _ 1) by lia.
  rewrite (nth_top dlow _ 1), (nth_top dlow _ 0) in * by lia. cbn [nth] in *.
  apply Forall_app_inv in Hok as [Hdl Hd2], Hw as [Hwl Hw3].
  inversion_clear Hd2 as [|? ? Hv0 Hd1]. inversion_clear Hd1 as [|? ? Hv1 _].
  inversion_clear Hw3 as [|? ? Hu2 Hw2]. inversion_clear Hw2 as [|? ? Hu1 Hw1]. inversion_clear Hw1 as [|? ? Hu0 _].
  pose proof (digits_value_bound _ Hdl) as Hbd. pose proof (digits_value_bound _ Hwl) as Hbw.
  rewrite !digits_value_app in *. cbn [digits_value] in *.
  replace (zlength wlow) with (zlength dlow) in * by (unfold zlength; lia).
  pose proof (pow32_pos _ (zlength_nonneg dlow)) as Hp. set (p := B32 ^ zlength dlow) in *. clearbody p.
  set (W := digits_value wlow + _) in *. set (D := digits_value dlow + _) in *.
  replace W with (((u0 * B32 + u1) * B32 + u2) * p + digits_value wlow) in * by (unfold W; ring).
  replace D with ((v1 * B32 + v0) * p + digits_value dlow) in * by (unfold D; ring). clear W D.
  set (W := _ + digits_value wlow) in *. set (D := _ + digits_value dlow) in *.
  pose proof (Z.div_mod W D ltac:(lia)). pose proof (Z.mod_pos_bound W D HD).
  apply (div_estimate_spec u0 u1 u2 (digits_value wlow) v1 v0 (digits_value dlow) p); try assumption.
  - unfold is_u32 in Hv1. lia.
  - split; [apply Z.div_pos; lia | apply Z.div_lt_upper_bound; lia].
  - fold W D. lia.
Qed.

Lemma div_window_spec window divisor ds q :
  normalised divisor -> digits_ok window -> length window = S (length divisor) ->
  digits_value window < B32 * digits_value divisor -> div_guard_sound window divisor = true ->
  div_window window divisor = (ds, q) ->
  digits_value window = digits_value divisor * q + digits_value ds
  /\ digits_value ds < digits_value divisor /\ digits_ok ds /\ length ds = length divisor /\ is_u32 q.
Proof.
  intros Hn Hw Lw HB Hs. unfold div_window.
  destruct (div_window_estimate window divisor _ Hn Hw Lw HB Hs eq_refl) as [Hqh Hu]. cbv zeta in *.
  set (qh := div_estimate _ _ _ _) in *. clearbody qh.
  assert (HD : 0 < digits_value divisor) by (apply digits_value_pos; [apply Hn | pose proof (norm_high _ Hn); lia]).
  pose proof (digits_value_bound _ Hw) as [HW0 _]. pose proof (digits_value_bound _ (norm_ok _ Hn)) as [_ HDb].
  set (W := digits_value window) in *. set (D := digits_value divisor) in *. set (P := B32 ^ zlength divisor) in *.
  pose proof (Z.div_mod W D ltac:(lia)) as EW. pose proof (Z.mod_pos_bound W D HD) as HR.
  set (q0 := W / D) in *. set (R := W mod D) in *. clearbody q0 R.
  assert (0 <= q0) by (apply Z.nlt_ge; intros Hneg; nia).
  destruct (mul_sub_loop window divisor qh 0) as [[ds0 carry] rest] eqn:E.
  apply mul_sub_loop_spec in E as (pre & Ew & Lp & V & Hds & Ld & Hc); try assumption; try apply Hn;
    [| unfold zlength; lia | unfold is_u32; lia].
  assert (Lr : length rest = 1%nat) by (rewrite Ew, length_app in Lw; unfold zlength in Lp; lia).
  destruct rest as [|top [|? ?]]; cbn in Lr; try lia. cbn [hd].
  assert (VW : W = digits_value pre + P * top) by (unfold W; rewrite Ew, digits_value_snoc, Lp; reflexivity).
  fold D P in V. pose proof (digits_value_bound _ Hds) as Hb. rewrite Ld in Hb. fold P in Hb.
  assert (Vall : digits_value ds0 + P * (top - carry) = W - D * qh) by lia.
  unfold zlength in Ld. destruct (Z.ltb_spec top carry) as [Hneg|Hpos].
  - assert (qh = q0 + 1) as -> by nia. assert (carry - top = 1) by nia.
    destruct (add_loop ds0 divisor 0) as [[ds1 c1] rest1] eqn:Ea.
    apply add_loop_spec in Ea as (Va & Ha & Hc1 & La & pre1 & E1 & L1); try apply Hn; try assumption;
      [| unfold zlength; lia | lia].
    assert (rest1 = []) as -> by (apply length_zero_iff_nil; rewrite E1, length_app in Ld; unfold zlength in L1; lia).
    cbn [digits_value] in Va. fold P D in Va. intro_pair. rewrite Z.add_simpl_r.
    pose proof (digits_value_bound _ Ha) as Hb1. rewrite La in Hb1. fold P in Hb1.
    assert (c1 = 1) as -> by nia. rewrite u32_small by (unfold is_u32 in *; lia).
    splits; try assumption; try lia; [unfold zlength in La; lia | unfold is_u32 in *; lia ..].
  - intro_pair. assert (qh = q0) as -> by nia. assert (top - carry = 0) by nia.
    splits; try assumption; try lia; apply Hu.
Qed.

(** ** The whole loop *)

(** The guard of step D3 is sound in every iteration of the run. *)
Fixpoint div_loop_sound (count : nat) (buffer divisor : list Z) : bool :=
  match count with
  | O => true
  | S j =>
      div_guard_sound (firstn (S (length divisor)) (skipn j buffer)) divisor
      && div_loop_sound j (div_step buffer divisor j) divisor
  end.

(** With [count] iterations to go, the first [count + n] digits hold what is
    left of the dividend and the others the quotient digits found so far. *)
Definition div_invariant (v : Z) (divisor : list Z) (count : nat) (low quotient : list Z) : Prop :=
  digits_ok (low ++ quotient)
  /\ length low = (count + length divisor)%nat
  /\ digits_value low < B32 ^ Z.of_nat count * digits_value divisor
  /\ v = digits_value low + B32 ^ Z.of_nat count * (digits_value divisor * digits_value quotient).

Lemma firstn_app_exact {A} (a b : list A) n : n = length a -> firstn n (a ++ b) = a.
Proof. intros ->. rewrite firstn_app, Nat.sub_diag, firstn_all. now rewrite app_nil_r. Qed.

Lemma skipn_app_exact {A} (a b : list A) n : n = length a -> skipn n (a ++ b) = b.
Proof. intros ->. rewrite skipn_app, Nat.sub_diag, skipn_all. reflexivity. Qed.

Lemma div_step_invariant v divisor j low quotient :
  normalised divisor -> div_invariant v divisor (S j) low quotient ->
  div_guard_sound (firstn (S (length divisor)) (skipn j (low ++ quotient))) divisor = true ->
  exists low' q, div_step (low ++ quotient) divisor j = low' ++ q :: quotient
    /\ div_invariant v divisor j low' (q :: quotient).
Proof.
  intros Hn (Hok & L & Hlt & ->) Hs. unfold div_step.
  rewrite <- (firstn_skipn j low) in *. set (lo := firstn j low) in *. set (window := skipn j low) in *.
  assert (Llo : length lo = j) by (unfold lo; rewrite length_firstn; rewrite length_app in L; unfold lo, window in *;
    rewrite length_firstn, length_skipn in L; lia).
  assert (Lw : length window = S (length divisor)) by (rewrite length_app in L; lia).
  clearbody lo window. rewrite <- app_assoc in *.
  rewrite (skipn_app_exact lo), (firstn_app_exact window) in * by lia.
  rewrite (firstn_app_exact lo) by lia.
  replace (skipn (j + S (length divisor)) (lo ++ window ++ quotient)) with quotient
    by (rewrite app_assoc, skipn_app_exact; [reflexivity | rewrite length_app; lia]).
  apply Forall_app_inv in Hok as [Hlo Hok]. apply Forall_app_inv in Hok as [Hw Hq].
  rewrite digits_value_app in *. replace (zlength lo) with (Z.of_nat j) in * by (unfold zlength; lia).
  rewrite Nat2Z.inj_succ, <- Z.add_1_l, pow32_succ in * by lia.
  pose proof (digits_value_bound _ Hlo) as Hb. replace (zlength lo) with (Z.of_nat j) in Hb by (unfold zlength; lia).
  remember (B32 ^ Z.of_nat j) as p eqn:Ep. assert (Hp : 0 < p) by (subst p; apply pow32_pos; lia).
  destruct (div_window window divisor) as [ds q] eqn:E.
  apply div_window_spec in E as (V & Hds & Hdok & Ld & Hqu); try assumption.
  2: { apply (Z.mul_lt_mono_pos_l p); [assumption |]. nia. }
  exists (lo ++ ds), q. split; [now rewrite <- !app_assoc |].
  unfold div_invariant. rewrite digits_value_app, !length_app.
  replace (zlength lo) with (Z.of_nat j) by (unfold zlength; lia). rewrite <- Ep.
  splits.
  - rewrite <- app_assoc. apply Forall_app. split; [assumption |]. apply Forall_app. split; [assumption |]. now apply Forall_cons.
  - lia.
  - nia.
  - cbn [digits_value]. rewrite V. ring.
Qed.

Lemma div_loop_spec v divisor : normalised divisor -> forall count low quotient,
  div_invariant v divisor count low quotient -> div_loop_sound count (low ++ quotient) divisor = true ->
  exists remainder quotient', div_loop count (low ++ quotient) divisor = remainder ++ quotient'
    /\ div_invariant v divisor 0 remainder quotient'
    /\ length (remainder ++ quotient') = length (low ++ quotient).
Proof.
  intros Hn. induction count as [|j IH]; intros low quotient Hi Hs; cbn [div_loop div_loop_sound] in *.
  { now exists low, quotient. }
  apply andb_prop in Hs as [Hg Hs].
  destruct (div_step_invariant v divisor j low quotient Hn Hi Hg) as (low' & q & E & Hi').
  rewrite E in *. destruct (IH _ _ Hi' Hs) as (r & qs & -> & Hr & L).
  exists r, qs. splits; [reflexivity | apply Hr .. |]. rewrite L, !length_app.
  destruct Hi as (_ & L1 & _), Hi' as (_ & L2 & _). cbn [length]. lia.
Qed.

(** ** Reading the result off the buffer *)

(** Digits of a result: no zero last digit, and none at all for zero *)
Definition trimmed (ds : list Z) (x : Z) : Prop :=
  digits_ok ds /\ digits_value ds = x /\ (ds = [] \/ last ds 0 <> 0).

Lemma remainder_end_spec k : forall ds, digits_ok ds -> length ds = S k ->
  forall tail, let e := remainder_end (ds ++ tail) k in
  (e <= k)%nat /\ (e <> 0%nat -> nth e ds 0 <> 0)
  /\ digits_value ds = digits_value (firstn e ds) + B32 ^ Z.of_nat e * nth e ds 0.
Proof.
  induction k as [|k IH]; intros ds Hok L tail; cbv zeta.
  { destruct ds as [|d [|? ?]]; cbn in L; try lia. cbn [remainder_end].
    splits; [lia | lia |]. change (Z.of_nat 0) with 0. rewrite Z.pow_0_r. cbn [digits_value firstn nth]. lia. }
  destruct (@exists_last _ ds) as (l & d & ->); [intros ->; cbn in L; lia |].
  rewrite length_app in L. cbn [length] in L. apply digits_ok_snoc in Hok as [Hok Hd].
  assert (Hn : nth (S k) (l ++ [d]) 0 = d) by (rewrite (nth_top l [d] 0) by lia; reflexivity).
  cbn [remainder_end]. rewrite <- app_assoc. rewrite (nth_top l _ 0) by lia. cbn [app nth].
  destruct (Z.eqb_spec d 0) as [->|].
  - destruct (IH l Hok ltac:(lia) (0 :: tail)) as (He & Hz & V). cbv zeta in *.
    set (e := remainder_end _ k) in *. rewrite app_nth1, firstn_app by lia.
    replace (e - length l)%nat with 0%nat by lia. rewrite app_nil_r.
    splits; [lia | assumption |]. rewrite digits_value_snoc. lia.
  - rewrite Hn. splits; [lia | easy |]. rewrite firstn_app_exact, digits_value_snoc by lia.
    f_equal. f_equal. unfold zlength. f_equal. f_equal. lia.
Qed.

Lemma firstn_succ_snoc (ds : list Z) e : (e < length ds)%nat -> firstn (S e) ds = firstn e ds ++ [nth e ds 0].
Proof.
  revert e. induction ds as [|d ds IH]; intros e H; cbn in H; [lia |].
  destruct e as [|e]; [reflexivity |]. cbn. now rewrite <- IH by lia.
Qed.

Lemma remainder_digits_spec remainder tail s :
  digits_ok remainder -> remainder <> [] -> 0 <= s < 32 ->
  trimmed (remainder_digits (remainder ++ tail) (length remainder) s) (digits_value remainder / 2 ^ s)
  /\ zlength (remainder_digits (remainder ++ tail) (length remainder) s) <= zlength remainder.
Proof.
  intros Hok Hne Hs. unfold trimmed, remainder_digits. pose proof (pow2_pos s ltac:(lia)) as Hp.
  assert (Hlen : length remainder = S (length remainder - 1)) by (destruct remainder; cbn; [easy | lia]).
  destruct (remainder_end_spec (length remainder - 1) remainder Hok Hlen tail) as (He & Hnz & V). cbv zeta in *.
  set (e := remainder_end _ _) in *. clearbody e.
  rewrite app_nth1 by lia. set (top := nth e remainder 0) in *.
  assert (Htop : is_u32 top) by (apply (proj1 (Forall_forall _ _) Hok), nth_In; lia).
  assert (Hfok : forall k, digits_ok (firstn k remainder)).
  { intros k. pose proof Hok as H. rewrite <- (firstn_skipn k remainder) in H. now apply Forall_app_inv in H. }
  assert (Lf : zlength (firstn e remainder) = Z.of_nat e) by (unfold zlength; rewrite length_firstn; lia).
  unfold is_u32 in Htop. rewrite Z.shiftr_div_pow2 by lia.
  pose proof (Z.div_mod top (2 ^ s) ltac:(lia)) as Et. pose proof (Z.mod_pos_bound top (2 ^ s) Hp) as Ht.
  assert (Hq0 : 0 <= top / 2 ^ s) by (apply Z.div_pos; lia).
  destruct (Z.eqb_spec (top / 2 ^ s) 0) as [Ez|Ez]; cbn [negb].
  - rewrite u32_shiftl by lia. replace (32 - (32 - s)) with s by lia.
    apply Z.div_small_iff in Ez; [| lia]. rewrite (Z.mod_small top) by lia.
    rewrite firstn_app. replace (e - length remainder)%nat with 0%nat by lia. rewrite firstn_O, app_nil_r.
    destruct (shift_right_digits (firstn e remainder) top s (Hfok e) Hs ltac:(lia)) as (Vd & Hd & Ld). cbv zeta in *.
    rewrite Lf, <- V in Vd.
    replace (if 0 <? s then _ else _) with (if s =? 0 then firstn e remainder
        else shift_right_loop (rev (firstn e remainder)) s (top * 2 ^ (32 - s)) [])
      by (destruct (Z.ltb_spec 0 s), (Z.eqb_spec s 0); lia || reflexivity).
    set (ds := if s =? 0 then _ else _) in *. clearbody ds. split; [| unfold zlength in *; lia].
    splits; try assumption. destruct e as [|e].
    + left. apply length_zero_iff_nil. unfold zlength in *. lia.
    + right. apply last_nonzero; [assumption | intros ->; rewrite (@zlength_nil Z) in Ld; lia |].
      rewrite Vd, Ld, Lf, V. specialize (Hnz ltac:(lia)). fold top in Hnz.
      apply Z.div_le_lower_bound; [lia |]. rewrite Nat2Z.inj_succ. replace (Z.succ (Z.of_nat e) - 1) with (Z.of_nat e) by lia.
      rewrite <- Z.add_1_l, pow32_succ by lia. pose proof (digits_value_bound _ (Hfok (S e))).
      pose proof (pow32_pos (Z.of_nat e) ltac:(lia)). pose proof (pow2_split s ltac:(lia)). pose proof (pow2_pos (32 - s) ltac:(lia)).
      nia.
  - rewrite Z.shiftl_0_l. change (u32 0) with 0.
    rewrite firstn_app. replace (S e - length remainder)%nat with 0%nat by lia. rewrite firstn_O, app_nil_r.
    destruct (shift_right_digits (firstn (S e) remainder) 0 s (Hfok (S e)) Hs ltac:(lia)) as (Vd & Hd & Ld). cbv zeta in *.
    assert (Vf : digits_value (firstn (S e) remainder) = digits_value remainder)
      by (rewrite firstn_succ_snoc, digits_value_snoc, Lf by lia; fold top; lia).
    rewrite Z.mul_0_l in Vd, Hd, Ld. rewrite Vf, Z.mul_0_r, Z.add_0_r in Vd.
    replace (if 0 <? s then _ else _) with (if s =? 0 then firstn (S e) remainder
        else shift_right_loop (rev (firstn (S e) remainder)) s 0 [])
      by (destruct (Z.ltb_spec 0 s), (Z.eqb_spec s 0); lia || reflexivity).
    set (ds := if s =? 0 then _ else _) in *. clearbody ds.
    assert (Ls : zlength (firstn (S e) remainder) = Z.of_nat (S e)) by (unfold zlength; rewrite length_firstn; lia).
    split; [| unfold zlength in *; lia].
    splits; try assumption. right. apply last_nonzero; [assumption | intros ->; rewrite (@zlength_nil Z) in Ld; lia |].
    rewrite Vd, Ld, Ls, V. apply Z.div_le_lower_bound; [lia |].
    replace (Z.of_nat (S e) - 1) with (Z.of_nat e) by lia. pose proof (digits_value_bound _ (Hfok e)).
    pose proof (pow32_pos (Z.of_nat e) ltac:(lia)). assert (2 ^ s <= top) by nia. nia.
Qed.

Lemma quotient_digits_spec remainder quotient m :
  digits_ok quotient -> length (remainder ++ quotient) = S m -> quotient <> [] ->
  (2 <= zlength quotient -> B32 ^ (zlength quotient - 2) <= digits_value quotient) ->
  trimmed (quotient_digits (remainder ++ quotient) (length remainder) m) (digits_value quotient)
  /\ zlength (quotient_digits (remainder ++ quotient) (length remainder) m) <= zlength quotient.
Proof.
  intros Hok L Hne Hlow. unfold trimmed, quotient_digits.
  snoc_view quotient l d Hne. rewrite app_assoc in *. rewrite length_app in L. cbn [length] in L.
  rewrite (nth_top _ [d] 0) by lia. cbn [nth]. pose proof (digits_ok_snoc _ _ Hok) as [Hl Hd].
  destruct (Z.eqb_spec d 0) as [->|Hnz]; cbn [negb].
  - rewrite firstn_app_exact, skipn_app_exact by lia.
    rewrite digits_value_snoc, zlength_snoc, Z.mul_0_r, Z.add_0_r in *.
    split; [| lia]. splits; try assumption; try reflexivity.
    destruct l as [|x l]; [now left | right]. apply last_nonzero; [assumption | easy |].
    replace (zlength (x :: l) + 1 - 2) with (zlength (x :: l) - 1) in Hlow by lia. apply Hlow.
    rewrite zlength_cons. pose proof (zlength_nonneg l). lia.
  - rewrite firstn_all2 by (rewrite !length_app in *; cbn [length]; lia). rewrite <- app_assoc, skipn_app_exact by reflexivity.
    split; [| lia]. splits; try assumption; try reflexivity. right. now rewrite last_last.
Qed.

(** ** Correctness of ecma_big_uint_div_mod *)

(** The normalising shift and the shifted operands of a division *)
Definition div_shift (divisor : ecma_extended_primitive_t) : Z :=
  ecma_big_uint_count_leading_zero (ECMA_BIGINT_GET_LAST_DIGIT divisor).

Definition shifted (ds : list Z) (s : Z) : list Z * Z :=
  if s =? 0 then (ds, 0) else shift_left_loop ds s 0.

(** The decidable condition on a division under which it is exact: a divisor of
    one digit, or a run in which the guard of step D3 is sound. *)
Definition div_guards_sound (dividend divisor : ecma_extended_primitive_t) : bool :=
  let s := div_shift divisor in
  let (ds, carry) := shifted (bigint_digits dividend) s in
  (zlength (bigint_digits divisor) =? 1)
  || div_loop_sound (S (length (bigint_digits dividend) - length (bigint_digits divisor)))
       (ds ++ [carry]) (fst (shifted (bigint_digits divisor) s)).

Lemma shifted_spec ds s ds' carry : digits_ok ds -> 0 <= s < 32 -> shifted ds s = (ds', carry) ->
  digits_value (ds' ++ [carry]) = digits_value ds * 2 ^ s /\ digits_ok (ds' ++ [carry])
  /\ length ds' = length ds.
Proof.
  intros Hok Hs. unfold shifted. rewrite digits_value_snoc. destruct (Z.eqb_spec s 0) as [->|].
  - intro_pair. rewrite Z.pow_0_r. splits; try lia. apply Forall_app. split; [assumption | repeat constructor; lia].
  - intros E. pose proof (pow2_pos s ltac:(lia)) as Hp.
    destruct ds as [|d ds]; [revert E; cbn; intro_pair; cbn; splits; try lia; repeat constructor; lia |].
    apply shift_left_loop_spec in E as (V & Hok' & L & Hc); try assumption; try lia.
    rewrite L, V. splits; [lia | | unfold zlength in L; lia].
    apply Forall_app. split; [assumption |]. constructor; [| constructor].
    rewrite (Hc ltac:(easy)), Z.shiftr_div_pow2 by lia.
    assert (Hu : is_u32 (last (d :: ds) 0)).
    { destruct (@exists_last _ (d :: ds)) as (l & x & E); [easy |]. rewrite E in *. rewrite last_last.
      now apply digits_ok_snoc in Hok as [_ ?]. }
    pose proof (pow2_pos (32 - s) ltac:(lia)). unfold is_u32 in *.
    split; [apply Z.div_pos; lia | apply Z.div_lt_upper_bound; nia].
Qed.

(** The shift makes the highest bit of the divisor set, without overflow. *)
Lemma div_shift_normalises v ds carry : big_uint_wf v -> (2 <= length (bigint_digits v))%nat ->
  shifted (bigint_digits v) (div_shift v) = (ds, carry) ->
  0 <= div_shift v < 32 /\ carry = 0 /\ normalised ds /\ digits_value ds = big_uint_value v * 2 ^ div_shift v
  /\ length ds = length (bigint_digits v).
Proof.
  intros Hv Hlen E. pose proof (wf_digits _ Hv) as Hok. pose proof (wf_last _ Hv) as Hl.
  unfold div_shift, ECMA_BIGINT_GET_LAST_DIGIT in *. unfold big_uint_value. set (dv := bigint_digits v) in *. clearbody dv.
  snoc_view dv low d (last_nonzero_nonempty _ Hl). rewrite last_last in *.
  pose proof (digits_ok_snoc _ _ Hok) as [Hlow Hd]. rewrite count_leading_zero_bits in * by assumption.
  unfold bit_length in *. destruct (Z.eqb_spec d 0); [easy |]. unfold is_u32 in Hd.
  pose proof (Z.log2_spec d ltac:(lia)) as [Hlg1 Hlg2].
  assert (Hlg : 0 <= Z.log2 d < 32) by (split; [apply Z.log2_nonneg | apply Z.log2_lt_pow2; lia]).
  set (s := 32 - (Z.log2 d + 1)) in *. assert (Hs : 0 <= s < 32) by (unfold s; lia).
  destruct (shifted_spec _ _ _ _ Hok Hs E) as (V & Hok' & L).
  assert (Hpow : 2 ^ Z.log2 d * 2 ^ s = 2147483648).
  { rewrite <- Z.pow_add_r by lia. now replace (Z.log2 d + s) with 31 by (unfold s; lia). }
  rewrite Z.pow_succ_r in Hlg2 by lia. pose proof (pow2_pos s ltac:(lia)).
  rewrite length_app in L, Hlen. cbn [length] in L, Hlen.
  destruct (@exists_last _ ds) as (l & x & ->); [intros ->; cbn in L; lia |].
  apply digits_ok_snoc in Hok' as [Hok' Hc]. pose proof (digits_ok_snoc _ _ Hok') as [Hl' Hx].
  rewrite !digits_value_snoc, !zlength_snoc, Z.pow_add_r, Z.pow_1_r in V by (apply zlength_nonneg || lia).
  rewrite length_app in L. cbn [length] in L.
  assert (Ll : zlength l = zlength low) by (unfold zlength; lia). rewrite Ll in *.
  pose proof (digits_value_bound _ Hl') as Hb1. pose proof (digits_value_bound _ Hlow) as Hb2. rewrite Ll in Hb1.
  pose proof (pow32_pos _ (zlength_nonneg low)) as Hp. set (p := B32 ^ zlength low) in *.
  unfold is_u32 in *. set (t := 2 ^ s) in *. set (g := 2 ^ Z.log2 d) in *. set (lv := digits_value low) in *.
  assert (Hdt : 2147483648 <= d * t <= B32 - t) by nia.
  assert (Hlt : 0 <= lv * t <= p * t - t) by nia. assert (Hpd : p * 2147483648 <= p * (d * t) <= p * (B32 - t)) by nia.
  assert (Hpx : 0 <= p * x) by (apply Z.mul_nonneg_nonneg; lia).
  assert (carry = 0) as ->.
  { enough (carry < 1) by lia. apply (Z.mul_lt_mono_pos_l (p * B32)); lia. }
  assert (2147483648 <= x) by (enough (2147483647 < x) by lia; apply (Z.mul_lt_mono_pos_l p); lia).
  splits; try lia; [split; try assumption; rewrite ?length_app, ?last_last; cbn [length]; lia | |].
  - rewrite !digits_value_snoc, Ll. fold p lv. lia.
  - rewrite !length_app. cbn [length]. lia.
Qed.

Lemma div_scaled a b t q r : 0 < b -> 0 < t -> a * t = r + 1 * (b * t * q) -> 0 <= r < b * t ->
  a / b = q /\ a mod b = r / t.
Proof.
  intros Hb Ht E Hr. assert (Er : r = (a - b * q) * t) by lia.
  rewrite Er, Z.div_mul by lia.
  destruct (div_mod_unique_pos a b q (a - b * q)) as [-> ->]; [| lia | easy]. nia.
Qed.

(** The digits that the division delivers *)
Lemma div_source dividend divisor ds carry dd carry' is_mod :
  big_uint_wf dividend -> big_uint_wf divisor -> (2 <= length (bigint_digits divisor))%nat ->
  big_uint_value divisor <= big_uint_value dividend ->
  shifted (bigint_digits dividend) (div_shift divisor) = (ds, carry) ->
  shifted (bigint_digits divisor) (div_shift divisor) = (dd, carry') ->
  let m := length (bigint_digits dividend) in
  let n := length (bigint_digits divisor) in
  div_loop_sound (S (m - n)) (ds ++ [carry]) dd = true ->
  let buffer := div_loop (S (m - n)) (ds ++ [carry]) dd in
  let source := if is_mod : bool then remainder_digits buffer n (div_shift divisor) else quotient_digits buffer n m in
  trimmed source (if is_mod then big_uint_value dividend mod big_uint_value divisor
                  else big_uint_value dividend / big_uint_value divisor)
  /\ zlength source <= zlength (bigint_digits dividend).
Proof.
  intros Ha Hb Hn Hle Ea Eb m n Hsound. cbv zeta.
  destruct (div_shift_normalises _ _ _ Hb Hn Eb) as (Hs & -> & Hnorm & Vb & Lb).
  destruct (shifted_spec _ _ _ _ (wf_digits _ Ha) Hs Ea) as (Va & Hok & La).
  pose proof (wf_length_le _ _ Hb Ha Hle) as Hlen. unfold zlength in Hlen. fold n m in Hlen.
  destruct (wf_bounds _ Ha) as (_ & Pa & _ & Alo & Ahi), (wf_bounds _ Hb) as (_ & Pb & _ & Blo & Bhi).
  pose proof (pow2_pos (div_shift divisor) ltac:(lia)) as Ht. set (s := div_shift divisor) in *.
  unfold zlength in Alo, Ahi, Blo, Bhi. fold m n in Alo, Ahi, Blo, Bhi, Hn. fold n in Lb. fold m in La.
  fold (big_uint_value dividend) in Va.
  set (A := big_uint_value dividend) in *. set (B := big_uint_value divisor) in *.
  destruct (div_loop_spec (A * 2 ^ s) dd Hnorm (S (m - n)) (ds ++ [carry]) []) as (rem & quot & E & (Hok' & Lr & Hrem & V) & L).
  { unfold div_invariant. rewrite app_nil_r. splits; [assumption | rewrite length_app; cbn [length]; lia | | cbn [digits_value]; lia].
    rewrite Va, Vb, Z.mul_assoc. apply Z.mul_lt_mono_pos_r; [assumption |].
    eapply Z.lt_le_trans; [apply Ahi |]. replace (Z.of_nat m) with (Z.of_nat (S (m - n)) + (Z.of_nat n - 1)) by lia.
    rewrite Z.pow_add_r by lia. apply Z.mul_le_mono_nonneg_l; [apply Z.lt_le_incl, pow32_pos; lia | assumption]. }
  { now rewrite app_nil_r. }
  rewrite app_nil_r in E, L. rewrite E. rewrite (length_app ds [carry]) in L. cbn [length] in L.
  cbn [Nat.add] in Lr. rewrite Z.pow_0_r, Z.mul_1_l, Vb in *.
  pose proof Hok' as [Hrok Hqok]%Forall_app_inv. pose proof (digits_value_bound _ Hrok) as [Hr0 _].
  destruct (div_scaled A B (2 ^ s) (digits_value quot) (digits_value rem)) as [-> ->]; [assumption .. | lia | lia |].
  replace n with (length rem) by lia. destruct is_mod.
  - destruct (remainder_digits_spec rem quot s) as [H1 H2]; try assumption.
    { intros ->. cbn in Lr. lia. } split; [assumption |]. unfold zlength in *. fold m. lia.
  - assert (Lq : length quot = (S m - n)%nat) by (rewrite length_app in L; lia).
    destruct (quotient_digits_spec rem quot m) as [H1 H2]; try assumption; try lia.
    { intros ->. cbn [length] in Lq. lia. }
    { intros H2. unfold zlength in *. rewrite Lq in *.
      replace (Z.of_nat (S m - n) - 2) with (Z.of_nat m - 1 - Z.of_nat n) by lia.
      apply Z.lt_succ_r. unfold Z.succ. apply (Z.mul_lt_mono_pos_r B); [assumption |].
      assert (Hq : A < (digits_value quot + 1) * B) by (apply (Z.mul_lt_mono_pos_r (2 ^ s)); lia).
      eapply Z.le_lt_trans; [| apply Hq]. eapply Z.le_trans; [| apply Alo].
      replace (Z.of_nat m - 1) with ((Z.of_nat m - 1 - Z.of_nat n) + Z.of_nat n) at 2 by lia.
      rewrite Z.pow_add_r by lia. apply Z.mul_le_mono_nonneg_l; [apply Z.lt_le_incl, pow32_pos |]; lia. }
    split; [assumption |]. unfold zlength in *. fold m. lia.
Qed.

Section DivMod.
Context {HA : HeapAlloc}.

Lemma wp_div_shift_left v s extend ds carry (Q : option (list Z) -> Z -> Prop) :
  big_uint_wf v -> (extend = false -> s <> 0) -> shifted (bigint_digits v) s = (ds, carry) ->
  Q (Some (if extend then ds ++ [carry] else ds))
    (digits_size (bigint_digits v) + if extend then sizeof_digit else 0) ->
  (~ heap_ample -> Q None 0) ->
  wp (ecma_big_uint_div_shift_left v s extend) Q.
Proof.
  intros Hv He E HS HN. unfold ecma_big_uint_div_shift_left, shifted in *.
  replace (if extend then u32 _ else _) with (digits_size (bigint_digits v) + if extend then sizeof_digit else 0).
  2: { rewrite wf_head_size by (assumption || (unfold ECMA_BIGINT_MAX_SIZE; lia)). rewrite (wf_size _ Hv). destruct extend; lia. }
  do 2 wp_step.
  - cbn [negb]. destruct (Z.eqb_spec s 0) as [->|].
    + destruct extend; [| now specialize (He eq_refl)]. revert E. intro_pair. wp_step. now rewrite Z.add_0_r.
    + rewrite E. wp_step. now rewrite Z.add_0_r.
  - intros Hf. cbn [negb]. wp_step. now apply HN.
Qed.

Lemma wp_trimmed ds x : trimmed ds x -> digits_size ds <= ECMA_BIGINT_MAX_SIZE ->
  wp (match ds with
      | [] => ret BIGINT_POINTER_TO_ZERO
      | _ => bind (ecma_bigint_create (digits_size ds)) (fun r =>
               match r with
               | None => ret BIGINT_NULL
               | Some r => ret (BIGINT_PTR (set_digits r ds))
               end)
      end) (big_uint_result x).
Proof.
  intros (Hok & Hx & Ht) Hm. destruct ds as [|d ds]; [wp_step; cbn in *; lia |].
  destruct Ht as [|Ht]; [easy |]. now apply wp_create_digits with (ds := d :: ds).
Qed.

Lemma wp_big_uint_div_mod dividend divisor is_mod :
  big_uint_wf dividend -> big_uint_wf divisor -> big_uint_value divisor <= big_uint_value dividend ->
  div_guards_sound dividend divisor = true ->
  wp (ecma_big_uint_div_mod dividend divisor is_mod)
     (big_uint_result (if is_mod then big_uint_value dividend mod big_uint_value divisor
                       else big_uint_value dividend / big_uint_value divisor)).
Proof.
  intros Ha Hb Hle Hs. unfold ecma_big_uint_div_mod. rewrite (wf_size _ Ha), (wf_size _ Hb).
  pose proof (zlength_pos _ (wf_nonempty _ Hb)) as Pb. unfold digits_size at 1.
  destruct (Z.eqb_spec (4 * zlength (bigint_digits divisor)) 4) as [E1|E1].
  { pose proof (wf_last _ Hb) as Hl. pose proof (wf_digits _ Hb) as Hok. unfold big_uint_value in *.
    destruct (bigint_digits divisor) as [|d [|? ds]] eqn:Ed; [easy | |].
    2: { rewrite !zlength_cons in E1. pose proof (zlength_nonneg ds). lia. }
    inversion_clear Hok as [|? ? Hd _]. cbn [digits_value last hd] in *. rewrite Z.mul_0_r, Z.add_0_r in *.
    unfold is_u32 in Hd. apply (wp_big_uint_div_digit dividend d is_mod Ha); [lia | assumption]. }
  unfold div_guards_sound in Hs. fold (div_shift divisor).
  destruct (shifted (bigint_digits dividend) (div_shift divisor)) as [ds carry] eqn:Ea.
  destruct (shifted (bigint_digits divisor) (div_shift divisor)) as [dd carry'] eqn:Eb.
  destruct (Z.eqb_spec (zlength (bigint_digits divisor)) 1); [lia |]. cbn [orb fst] in Hs.
  assert (Hn : (2 <= length (bigint_digits divisor))%nat) by (unfold zlength in *; lia).
  pose proof (wf_max _ Ha) as Hm.
  destruct (div_source _ _ _ _ _ _ is_mod Ha Hb Hn Hle Ea Eb Hs) as [Hsrc Lsrc].
  set (x := if is_mod then big_uint_value dividend mod big_uint_value divisor
            else big_uint_value dividend / big_uint_value divisor) in *. clearbody x.
  wp_step. eapply (wp_div_shift_left dividend _ true); [assumption | easy | eassumption | |].
  2: { intros Hf. wp_step. cbn. split; [reflexivity | easy]. }
  wp_step. set (buffer := ds ++ [carry]) in *.
  assert (Hdm : forall l, Z.to_nat (digits_size l / 4) = length l)
    by (intros; unfold digits_size, zlength; rewrite Z.mul_comm, Z.div_mul; lia).
  rewrite !Hdm.
  assert (Hbody : wp (let buffer := div_loop (S (length (bigint_digits dividend) - length (bigint_digits divisor))) buffer dd in
              let source := if is_mod then remainder_digits buffer (length (bigint_digits divisor)) (div_shift divisor)
                            else quotient_digits buffer (length (bigint_digits divisor)) (length (bigint_digits dividend)) in
              match source with
              | [] => ret BIGINT_POINTER_TO_ZERO
              | _ => bind (ecma_bigint_create (digits_size source)) (fun r =>
                       match r with
                       | None => ret BIGINT_NULL
                       | Some r => ret (BIGINT_PTR (set_digits r source))
                       end)
              end) (big_uint_result x)).
  { apply wp_trimmed; [assumption | unfold digits_size in *; lia]. }
  destruct (Z.ltb_spec 0 (div_shift divisor)) as [Hpos|Hz].
  - eapply (wp_div_shift_left divisor _ false); [assumption | lia | eassumption | |].
    + wp_step. eapply wp_mono; [exact Hbody |]. intros res d Hres. do 5 wp_step.
      held_is d; [lia | assumption].
    + intros Hf. do 5 wp_step. cbn. split; [lia | easy].
  - assert (dd = bigint_digits divisor) as ->.
    { destruct (div_shift_normalises divisor dd carry' Hb Hn Eb) as [? _]. revert Eb. unfold shifted.
      destruct (Z.eqb_spec (div_shift divisor) 0); [now intro_pair | lia]. }
    wp_step. wp_step. eapply wp_mono; [exact Hbody |]. intros res d Hres. do 3 wp_step.
    held_is d; [lia | assumption].
Qed.
End DivMod.

(** ** Properties *)

(** The guard is sound when the second digit of the normalised divisor is zero. *)
Lemma div_loop_sound_low_zero divisor : nth (length divisor - 2) divisor 0 = 0 -> forall count buffer,
  div_loop_sound count buffer divisor = true.
Proof.
  intros Hz. assert (Hl : forall fuel q r v1 u2, estimate_loop_sound fuel q r 0 v1 0 u2 = true).
  { intros [|fuel] q r v1 u2; [reflexivity |]. cbn [estimate_loop_sound]. rewrite Z.lor_0_r.
    destruct (Z.ltb_spec (ECMA_BIGINT_HIGH_DIGIT r) 0) as [H|]; [| reflexivity].
    unfold ECMA_BIGINT_HIGH_DIGIT, u64 in H. pose proof (Z.mod_pos_bound (Z.shiftl r 32) B64). lia. }
  induction count as [|j IH]; intros buffer; [reflexivity |]. cbn [div_loop_sound]. rewrite IH, andb_true_r.
  unfold div_guard_sound, estimate_sound. rewrite Hz, !Z.mul_0_r. change (u64 0) with 0. rewrite !Hl.
  now destruct (_ <? _); [| rewrite orb_true_r].
Qed.

Section Properties.
Context {HA : HeapAlloc}.

(** Ecma_big_uint_div_digit delivers the exact quotient, or the exact
    remainder, of a magnitude divided by one digit. *)
Theorem ecma_big_uint_div_digit_correct v divisor is_mod :
  big_uint_wf v -> 0 < divisor < B32 -> divisor <= big_uint_value v ->
  wp (ecma_big_uint_div_digit v divisor is_mod)
     (big_uint_result (if is_mod then big_uint_value v mod divisor else big_uint_value v / divisor)).
Proof. apply wp_big_uint_div_digit. Qed.

(** C33: ecma_big_uint_div_mod delivers the exact quotient or remainder, and
    returns both work buffers, for every dividend and divisor whose run keeps
    the guard of step D3 sound: normalisation, the estimate within one of the
    true digit, multiply-and-subtract with its borrow, the add-back and the
    denormalised remainder are all exact then. *)
Theorem ecma_big_uint_div_mod_correct dividend divisor is_mod :
  big_uint_wf dividend -> big_uint_wf divisor -> big_uint_value divisor <= big_uint_value dividend ->
  div_guards_sound dividend divisor = true ->
  wp (ecma_big_uint_div_mod dividend divisor is_mod)
     (big_uint_result (if is_mod then big_uint_value dividend mod big_uint_value divisor
                       else big_uint_value dividend / big_uint_value divisor)).
Proof. apply wp_big_uint_div_mod. Qed.
End Properties.

(** The guard of step D3 uses divisor_low where the third digit of the
    dividend belongs, and the division is not exact in general: (2^64 + 2)
    divided by (2^63 + 1) gives the quotient 1 and the remainder 2^63 + 1
    instead of 2 and 0. *)
Theorem ecma_big_uint_div_mod_inexact :
  let run is_mod := fst (@ecma_big_uint_div_mod (CounterHeap true) (big_uint_of [2; 0; 1])
                           (big_uint_of [1; 2147483648]) is_mod (empty_heap 0)) in
  big_uint_value (big_uint_of [2; 0; 1]) = 2 * big_uint_value (big_uint_of [1; 2147483648])
  /\ run false = BIGINT_PTR (big_uint_of [1]) /\ run true = BIGINT_PTR (big_uint_of [1; 2147483648]).
Proof. vm_compute. auto. Qed.

Lemma ecma_big_uint_div_digit_witness :
  @wp (CounterHeap true) _ (@ecma_big_uint_div_digit (CounterHeap true) (big_uint_of [5; 10]) 7 true)
    (@big_uint_result (CounterHeap true) ((5 + 10 * B32) mod 7)).
Proof. apply (@ecma_big_uint_div_digit_correct (CounterHeap true) (big_uint_of [5; 10]) 7 true); [wf_of | lia | vm_compute; discriminate]. Defined.

Lemma ecma_big_uint_div_mod_witness :
  @wp (CounterHeap true) _ (@ecma_big_uint_div_mod (CounterHeap true) (big_uint_of [10; 20; 30; 40]) (big_uint_of [7; 9]) true)
    (@big_uint_result (CounterHeap true) 14687727663).
Proof.
  apply (@ecma_big_uint_div_mod_correct (CounterHeap true) (big_uint_of [10; 20; 30; 40]) (big_uint_of [7; 9]) true);
    [wf_of | wf_of | vm_compute; discriminate | reflexivity].
Defined.
