(* ===== verification/BigUintString.v ===== *)
(** * Printing magnitudes: ecma_big_uint_to_string

    The conversion of src/jjs-core/ecma/operations/ecma-big-uint.c works in one
    buffer: the digits are copied to its start and divided by the radix again
    and again, while the characters are written from its end downwards.  The
    model keeps the digits and the characters apart and checks, after every
    character, the condition under which they do not overlap in the buffer
    (string_p >= start_p).

    A division step exists in two variants, selected by the width of
    uintptr_t; both are modelled and proved to compute the same. *)
From Stdlib Require Import ZArith List Lia Bool.
From S2P Require Import Prelude LitChars HeapIface BigUint BigUintBits BigUintDiv.
Import ListNotations.
#[local] Open Scope Z_scope.
#[local] Open Scope heap_scope.


(** Size of the buffer for [size] bytes of digits *)
Definition to_string_max_size (size radix : Z) : Z :=
  let max_size := u32 (size * 8) in
  let max_size :=
    if radix <? 16 then
      if 8 <=? radix then u32 (max_size + 2) / 3
      else if 4 <=? radix then Z.shiftr (u32 (max_size + 1)) 1
      else max_size
    else if radix <? 32 then Z.shiftr (u32 (max_size + 3)) 2
    else u32 (max_size + 4) / 5 in
  Z.land (u32 (max_size + (2 * sizeof_digit - 1))) (u32 (Z.lnot (sizeof_digit - 1))).

(** The 64-bit variant: the digits divided from the most significant one *)
Definition radix_divide_wide (ds : list Z) (radix : Z) : list Z * Z :=
  div_digit_loop (rev ds) radix 0 [].

(** The 32-bit variant divides two digits at once, as three numbers of 22, 20
    and 22 bits. *)
Definition radix_divide_pair (current1 current2 radix remainder : Z) : Z * Z * Z :=
  let extract_bits_low := 10 in
  let extract_bits_low_mask := Z.shiftl 1 extract_bits_low - 1 in
  let extract_bits_high := 32 - extract_bits_low in
  let extract_bits_high_mask := Z.shiftl 1 extract_bits_high - 1 in
  let result_mid := u32 (Z.shiftl (Z.land current1 extract_bits_low_mask) extract_bits_low) in
  let result_high := Z.lor (Z.shiftr current1 extract_bits_low) (u32 (Z.shiftl remainder extract_bits_high)) in
  let result_mid := Z.lor result_mid (u32 (Z.shiftl (result_high mod radix) (extract_bits_low * 2))) in
  let result_high := u32 (Z.shiftl (result_high / radix) extract_bits_low) in
  let result_mid := Z.lor result_mid (Z.shiftr current2 extract_bits_high) in
  let result_low := Z.lor (Z.land current2 extract_bits_high_mask)
                      (u32 (Z.shiftl (result_mid mod radix) extract_bits_high)) in
  let result_mid := result_mid / radix in
  (Z.lor result_high (Z.shiftr result_mid extract_bits_low),
   Z.lor (result_low / radix) (u32 (Z.shiftl result_mid extract_bits_high)),
   result_low mod radix).

Fixpoint radix_pairs_loop (rev_digits : list Z) (radix remainder : Z) (result : list Z) : list Z * Z :=
  match rev_digits with
  | current1 :: current2 :: rest =>
      let '(high, low, remainder') := radix_divide_pair current1 current2 radix remainder in
      radix_pairs_loop rest radix remainder' (low :: high :: result)
  | _ => (result, remainder)
  end.

Definition radix_divide_narrow (ds : list Z) (radix : Z) : list Z * Z :=
  if ECMA_BIGINT_SIZE_IS_ODD (digits_size ds) then
    match rev ds with
    | result :: rest => radix_pairs_loop rest radix (result mod radix) [result / radix]
    | [] => ([], 0)
    end
  else radix_pairs_loop (rev ds) radix 0 [].

Definition radix_divide (wide : bool) (ds : list Z) (radix : Z) : list Z * Z :=
  if wide then radix_divide_wide ds radix else radix_divide_narrow ds radix.

Definition radix_char (remainder : Z) : Z :=
  u8 (if remainder <? 10 then remainder + LIT_CHAR_0 else remainder + (LIT_CHAR_LOWERCASE_A - 10)).

(** The outer loop.  [ds] are the digits below start_p, [chars] the characters
    from string_p on; [None] when a character is written over the digits. *)
Fixpoint to_string_loop (fuel : nat) (wide : bool) (max_size radix : Z) (ds chars : list Z) : option (list Z) :=
  match fuel with
  | O => None
  | S fuel' =>
      let (ds, remainder) := radix_divide wide ds radix in
      let chars := radix_char remainder :: chars in
      if max_size - zlength chars <? digits_size ds then None
      else
        let ds := if last ds 0 =? 0 then removelast ds else ds in
        match ds with
        | [] => Some chars
        | _ => to_string_loop fuel' wide max_size radix ds chars
        end
  end.

Section Printing.
Context {HA : HeapAlloc}.

(** The characters, char_start_p and char_size_p; [None] stands for NULL.  A
    value of n digits has at most 32 n digits in any radix. *)
Definition ecma_big_uint_to_string (wide : bool) (v : ecma_extended_primitive_t) (radix : Z)
    : M (option (option (list Z) * Z * Z)) :=
  let size := ECMA_BIGINT_GET_SIZE v in
  let max_size := to_string_max_size size radix in
  ok <- jmem_heap_alloc_block_null_on_error max_size;;
  ret (if negb ok then None
       else
         let chars := to_string_loop (32 * length (bigint_digits v)) wide max_size radix (bigint_digits v) [] in
         Some (chars, max_size - match chars with Some cs => zlength cs | None => 0 end, max_size)).
End Printing.

(** ** Division by the radix *)

Lemma shiftl_small a n : 0 <= n -> 0 <= a -> a * 2 ^ n < B32 -> u32 (Z.shiftl a n) = a * 2 ^ n.
Proof.
  intros. rewrite Z.shiftl_mul_pow2 by lia. apply u32_small. unfold is_u32.
  pose proof (pow2_pos n ltac:(lia)). nia.
Qed.

Lemma lor_high_low a b n : 0 <= n -> 0 <= b < 2 ^ n -> Z.lor b (a * 2 ^ n) = a * 2 ^ n + b.
Proof. intros. now rewrite Z.lor_comm, lor_mul_low. Qed.

(** A number [h * 2^k + l] divided with quotient below [2^k] *)
Lemma quotient_bound x radix k : 0 < radix -> 0 <= k -> 0 <= x < radix * 2 ^ k ->
  0 <= x / radix < 2 ^ k /\ 0 <= x mod radix < radix /\ x = radix * (x / radix) + x mod radix.
Proof.
  intros Hr Hk Hx. splits.
  - apply Z.div_pos; lia.
  - apply Z.div_lt_upper_bound; lia.
  - apply Z.mod_pos_bound; lia.
  - apply Z.mod_pos_bound; lia.
  - apply Z.div_mod; lia.
Qed.

Lemma radix_divide_pair_spec c1 c2 radix remainder high low remainder' :
  is_u32 c1 -> is_u32 c2 -> 2 <= radix <= 36 -> 0 <= remainder < radix ->
  radix_divide_pair c1 c2 radix remainder = (high, low, remainder') ->
  c2 + B32 * c1 + B64 * remainder = radix * (low + B32 * high) + remainder'
  /\ is_u32 high /\ is_u32 low /\ 0 <= remainder' < radix.
Proof.
  intros H1 H2 Hr Hm. unfold radix_divide_pair. cbv zeta. unfold is_u32 in *.
  change (32 - 10) with 22. change (10 * 2) with 20.
  rewrite (land_ones' c1 10 (Z.shiftl 1 10 - 1)), (land_ones' c2 22 (Z.shiftl 1 22 - 1)) by (reflexivity || lia).
  rewrite !Z.shiftr_div_pow2 by lia.
  pose proof (Z.div_mod c1 (2 ^ 10) ltac:(lia)) as E1. pose proof (Z.mod_pos_bound c1 (2 ^ 10) ltac:(lia)) as B1.
  pose proof (Z.div_mod c2 (2 ^ 22) ltac:(lia)) as E2. pose proof (Z.mod_pos_bound c2 (2 ^ 22) ltac:(lia)) as B2.
  set (h22 := c1 / 2 ^ 10) in *. set (m10 := c1 mod 2 ^ 10) in *. set (m10' := c2 / 2 ^ 22) in *. set (l22 := c2 mod 2 ^ 22) in *.
  clearbody h22 m10 m10' l22.
  rewrite (shiftl_small remainder 22), (lor_high_low remainder h22 22) by lia.
  destruct (quotient_bound (remainder * 2 ^ 22 + h22) radix 22) as (Q1 & R1 & D1); [lia .. |].
  set (qh := (remainder * 2 ^ 22 + h22) / radix) in *. set (a := (remainder * 2 ^ 22 + h22) mod radix) in *. clearbody qh a.
  rewrite (shiftl_small m10 10), (shiftl_small a 20), (lor_high_low a (m10 * 2 ^ 10) 20) by lia.
  replace (a * 2 ^ 20 + m10 * 2 ^ 10) with ((a * 2 ^ 10 + m10) * 2 ^ 10) by lia.
  rewrite lor_mul_low by lia.
  destruct (quotient_bound ((a * 2 ^ 10 + m10) * 2 ^ 10 + m10') radix 20) as (Q2 & R2 & D2); [lia .. |].
  set (qm := ((a * 2 ^ 10 + m10) * 2 ^ 10 + m10') / radix) in *. set (b := ((a * 2 ^ 10 + m10) * 2 ^ 10 + m10') mod radix) in *. clearbody qm b.
  rewrite (shiftl_small b 22), (lor_high_low b l22 22) by lia.
  destruct (quotient_bound (b * 2 ^ 22 + l22) radix 22) as (Q3 & R3 & D3); [lia .. |].
  set (ql := (b * 2 ^ 22 + l22) / radix) in *. set (r := (b * 2 ^ 22 + l22) mod radix) in *. clearbody ql r.
  rewrite (shiftl_small qh 10) by lia. rewrite (u32_shiftl qm 22) by lia. change (32 - 22) with 10.
  pose proof (Z.div_mod qm (2 ^ 10) ltac:(lia)) as E3. pose proof (Z.mod_pos_bound qm (2 ^ 10) ltac:(lia)) as B3.
  set (qm1 := qm / 2 ^ 10) in *. set (qm0 := qm mod 2 ^ 10) in *. clearbody qm1 qm0.
  rewrite lor_mul_low, lor_high_low by lia. intro_triple. lia.
Qed.

Lemma radix_pairs_loop_spec radix : 2 <= radix <= 36 -> forall n rds, length rds = (2 * n)%nat ->
  digits_ok (rev rds) -> forall remainder result, 0 <= remainder < radix ->
  exists qs r, radix_pairs_loop rds radix remainder result = (qs ++ result, r)
    /\ digits_value (rev rds) + B32 ^ zlength rds * remainder = radix * digits_value qs + r
    /\ digits_ok qs /\ zlength qs = zlength rds /\ 0 <= r < radix.
Proof.
  intros Hr n. induction n as [|n IH]; intros rds L Hok remainder result Hm.
  { destruct rds; cbn in L; [| lia]. exists [], remainder. rewrite (@zlength_nil Z). cbn [rev digits_value radix_pairs_loop app].
    splits; try reflexivity; try lia. constructor. }
  destruct rds as [|c1 [|c2 rds]]; cbn [length] in L; try lia. cbn [radix_pairs_loop rev] in *.
  apply digits_ok_snoc in Hok as [Hok H1]. apply digits_ok_snoc in Hok as [Hok H2].
  destruct (radix_divide_pair c1 c2 radix remainder) as [[high low] r1] eqn:E.
  apply radix_divide_pair_spec in E as (V & Hh & Hl & Hr1); try assumption.
  destruct (IH rds ltac:(lia) Hok r1 (low :: high :: result) Hr1) as (qs & r & -> & V' & Hq & Lq & Hr').
  exists (qs ++ [low; high]), r. rewrite <- app_assoc. splits; try reflexivity; try lia.
  - rewrite !digits_value_snoc, !digits_value_app, zlength_snoc, !zlength_cons.
    replace (zlength (rev rds)) with (zlength rds) by (unfold zlength; now rewrite length_rev).
    rewrite Lq. rewrite !pow32_succ, Z.pow_add_r, Z.pow_1_r by (pose proof (zlength_nonneg rds); lia).
    set (p := B32 ^ zlength rds) in *. cbn [digits_value].
    replace (radix * (digits_value qs + _) + r) with (radix * digits_value qs + r + p * (radix * (low + B32 * high))) by ring.
    rewrite <- V'. replace (radix * (low + B32 * high)) with (c2 + B32 * c1 + B64 * remainder - r1) by lia. ring.
  - apply Forall_app. split; [assumption | apply Forall_cons; [assumption |]; apply Forall_cons; [assumption | constructor]].
  - rewrite zlength_app, Lq, !zlength_cons, (@zlength_nil Z). lia.
Qed.

(** Both variants divide the whole number. *)
Lemma radix_divide_spec wide ds radix ds' r : digits_ok ds -> 2 <= radix <= 36 ->
  radix_divide wide ds radix = (ds', r) ->
  digits_value ds = radix * digits_value ds' + r /\ 0 <= r < radix
  /\ digits_ok ds' /\ zlength ds' = zlength ds.
Proof.
  intros Hok Hr. assert (Lrev : forall l : list Z, zlength (rev l) = zlength l) by (intros; unfold zlength; now rewrite length_rev).
  unfold radix_divide, radix_divide_wide, radix_divide_narrow. destruct wide.
  - destruct (div_digit_loop_spec radix ltac:(lia) (rev ds)) with (remainder := 0) (quotient := @nil Z)
      as (qs & r' & -> & V & Hq & L & Hr'); [now rewrite rev_involutive | lia |].
    rewrite app_nil_r. intro_pair. rewrite rev_involutive, Lrev in *. splits; try assumption; lia.
  - unfold digits_size. rewrite size_is_odd_eq. destruct (Z.odd (zlength ds)) eqn:Eo.
    + assert (Hne : ds <> []) by (intros ->; discriminate).
      snoc_view ds low d Hne. rewrite rev_app_distr. cbn [rev app].
      pose proof (digits_ok_snoc _ _ Hok) as [Hlow Hd]. unfold is_u32 in Hd.
      rewrite zlength_snoc, Z.odd_add in Eo. change (Z.odd 1) with true in Eo.
      assert (Z.Even (zlength low)) as [k Hk].
      { apply Z.even_spec. rewrite <- Z.negb_odd. now destruct (Z.odd (zlength low)). }
      destruct (radix_pairs_loop_spec radix Hr (Z.to_nat k) (rev low)) with (remainder := d mod radix) (result := [d / radix])
        as (qs & r' & -> & V & Hq & L & Hr'); [rewrite length_rev; unfold zlength in Hk; lia | now rewrite rev_involutive | apply Z.mod_pos_bound; lia |].
      rewrite rev_involutive, Lrev in *. intro_pair.
      pose proof (Z.div_mod d radix ltac:(lia)). pose proof (Z.div_pos d radix).
      assert (d / radix <= d) by (apply Z.div_le_upper_bound; nia).
      rewrite !digits_value_snoc, !zlength_snoc, L. splits; try lia.
      apply Forall_app. split; [assumption |]. apply Forall_cons; [unfold is_u32; lia | constructor].
    + assert (Z.Even (zlength ds)) as [k Hk] by (apply Z.even_spec; rewrite <- Z.negb_odd, Eo; reflexivity).
      destruct (radix_pairs_loop_spec radix Hr (Z.to_nat k) (rev ds)) with (remainder := 0) (result := @nil Z)
        as (qs & r' & -> & V & Hq & L & Hr'); [rewrite length_rev; unfold zlength in Hk; lia | now rewrite rev_involutive | lia |].
      rewrite app_nil_r. intro_pair. rewrite rev_involutive, Lrev in *. splits; try assumption; lia.
Qed.

(** ** Characters and their value *)

(** The digit a character stands for *)
Definition char_digit (c : Z) : Z := if c <? 58 then c - LIT_CHAR_0 else c - (LIT_CHAR_LOWERCASE_A - 10).

(** The number a character sequence denotes, most significant digit first *)
Definition radix_value (radix : Z) (chars : list Z) : Z :=
  fold_left (fun acc c => acc * radix + char_digit c) chars 0.

Definition is_radix_char (radix c : Z) : Prop :=
  (48 <= c <= 57 \/ 97 <= c <= 122) /\ 0 <= char_digit c < radix.

Lemma radix_value_snoc radix chars c :
  radix_value radix (chars ++ [c]) = radix_value radix chars * radix + char_digit c.
Proof. unfold radix_value. now rewrite fold_left_app. Qed.

Lemma radix_char_spec radix r : 2 <= radix <= 36 -> 0 <= r < radix ->
  char_digit (radix_char r) = r /\ is_radix_char radix (radix_char r).
Proof.
  intros Hr Hm. unfold is_radix_char.
  enough (E : char_digit (radix_char r) = r /\ (48 <= radix_char r <= 57 \/ 97 <= radix_char r <= 122))
    by (destruct E as [-> ?]; lia).
  unfold radix_char, char_digit, u8, LIT_CHAR_0, LIT_CHAR_LOWERCASE_A.
  destruct (Z.ltb_spec r 10); rewrite Z.mod_small by lia; (split; [| lia]);
    match goal with |- context [?a <? 58] => destruct (Z.ltb_spec a 58) end; lia.
Qed.

(** ** Space in the buffer *)

(** Number of bits that every digit of a radix carries at least *)
Definition radix_bits (radix : Z) : Z :=
  if radix <? 4 then 1 else if radix <? 8 then 2 else if radix <? 16 then 3 else if radix <? 32 then 4 else 5.

Lemma radix_bits_spec radix : 2 <= radix <= 36 -> 1 <= radix_bits radix <= 5 /\ 2 ^ radix_bits radix <= radix.
Proof.
  intros H. unfold radix_bits.
  destruct (Z.ltb_spec radix 4), (Z.ltb_spec radix 8), (Z.ltb_spec radix 16), (Z.ltb_spec radix 32); cbn; lia.
Qed.

Lemma land_align x : 0 <= x < B32 -> Z.land x (u32 (Z.lnot (sizeof_digit - 1))) = 4 * (x / 4).
Proof. intros. change (u32 _) with 4294967292. now apply land_size_mask. Qed.

(** The buffer has room for all characters and four more bytes. *)
Lemma to_string_max_size_spec n radix : 0 <= n <= 16384 -> 2 <= radix <= 36 ->
  32 * n <= radix_bits radix * (to_string_max_size (4 * n) radix - 4).
Proof.
  intros Hn Hr. unfold to_string_max_size, radix_bits.
  destruct (Z.ltb_spec radix 16), (Z.leb_spec 8 radix), (Z.leb_spec 4 radix), (Z.ltb_spec radix 32),
    (Z.ltb_spec radix 4), (Z.ltb_spec radix 8); try lia;
    rewrite ?Z.shiftr_div_pow2 by lia; change (2 ^ 1) with 2; change (2 ^ 2) with 4;
    rewrite (u32_small (4 * n * 8)) by (unfold is_u32; lia);
    rewrite ?(u32_small (4 * n * 8 + _)) by (unfold is_u32; lia);
    rewrite land_align by (apply u32_range || lia); rewrite ?u32_small by (unfold is_u32; Z.div_mod_to_equations; lia);
    Z.div_mod_to_equations; lia.
Qed.

(** The characters written so far and the digits left fit together. *)
Lemma buffer_room n0 n k v bits max_size :
  1 <= bits <= 5 -> 0 <= k -> 1 <= n -> 0 <= n0 -> B32 ^ (n - 1) <= v -> v * 2 ^ (bits * k) < B32 ^ n0 ->
  32 * n0 <= bits * (max_size - 4) -> 4 * n <= max_size - (k + 1).
Proof.
  intros Hb Hk Hn Hn0 Hlow Hv Hmax.
  assert (Hexp : 32 * (n - 1) + bits * k < 32 * n0).
  { apply (Z.pow_lt_mono_r_iff 2); [lia | lia |]. rewrite Z.pow_add_r by nia.
    rewrite !pow32_pow2 in * by lia. pose proof (pow2_pos (bits * k) ltac:(nia)). nia. }
  assert (bits * (k + 1 + 4 * n) < bits * (max_size + 1)) by nia. nia.
Qed.

(** ** The outer loop *)

(** The digits that remain after a division, without the last one if it is zero *)
Lemma trim_quotient ds ds' radix : digits_ok ds -> last ds 0 <> 0 -> digits_ok ds' -> zlength ds' = zlength ds ->
  2 <= radix <= 36 -> digits_value ds' = digits_value ds / radix ->
  let rest := if last ds' 0 =? 0 then removelast ds' else ds' in
  digits_value rest = digits_value ds / radix /\ digits_ok rest /\ (rest = [] \/ last rest 0 <> 0).
Proof.
  intros Hok Hl Hok' L Hr V. cbv zeta.
  assert (Hne : ds' <> []) by (intros ->; pose proof (zlength_pos _ (last_nonzero_nonempty _ Hl)); rewrite (@zlength_nil Z) in L; lia).
  destruct (Z.eqb_spec (last ds' 0) 0) as [E|E]; [| now auto].
  snoc_view ds' l d Hne. rewrite last_last in E. subst d. rewrite removelast_last.
  apply digits_ok_snoc in Hok' as [Hok' _]. rewrite digits_value_snoc in V. rewrite zlength_snoc in L.
  splits; [lia | assumption |]. destruct l as [|x l]; [now left | right].
  apply last_nonzero; [assumption | easy |]. replace (digits_value (x :: l)) with (digits_value ds / radix) by lia.
  apply Z.div_le_lower_bound; [lia |]. eapply Z.le_trans; [| now apply digits_value_lower].
  replace (zlength ds - 1) with (1 + (zlength (x :: l) - 1)) by lia.
  rewrite pow32_succ by (rewrite zlength_cons; pose proof (zlength_nonneg l); lia).
  apply Z.mul_le_mono_nonneg_r; [apply Z.lt_le_incl, pow32_pos; rewrite zlength_cons; pose proof (zlength_nonneg l) |]; lia.
Qed.

Lemma to_string_loop_spec wide max_size radix n0 : 2 <= radix <= 36 -> 0 <= n0 ->
  32 * n0 <= radix_bits radix * (max_size - 4) -> forall fuel ds chars,
  digits_ok ds -> last ds 0 <> 0 -> digits_value ds < 2 ^ Z.of_nat fuel ->
  digits_value ds * 2 ^ (radix_bits radix * zlength chars) < B32 ^ n0 ->
  exists cs, to_string_loop fuel wide max_size radix ds chars = Some (cs ++ chars)
    /\ radix_value radix cs = digits_value ds /\ Forall (is_radix_char radix) cs /\ char_digit (hd 48 cs) <> 0.
Proof.
  intros Hr Hn0 Hmax. destruct (radix_bits_spec radix Hr) as [Hb Hbits].
  induction fuel as [|fuel IH]; intros ds chars Hok Hl Hfuel Hroom.
  { pose proof (digits_value_pos _ Hok Hl). change (2 ^ Z.of_nat 0) with 1 in Hfuel. lia. }
  cbn [to_string_loop]. destruct (radix_divide wide ds radix) as [ds' r] eqn:E.
  apply radix_divide_spec in E as (V & Hm & Hok' & L); try assumption.
  destruct (radix_char_spec radix r Hr Hm) as [Hdig Hchar].
  destruct (div_mod_unique_pos (digits_value ds) radix (digits_value ds') r Hm V) as [Vq _].
  pose proof (digits_value_bound _ Hok') as [H0' _]. pose proof (digits_value_pos _ Hok Hl) as Hpos.
  pose proof (zlength_pos _ (last_nonzero_nonempty _ Hl)) as Hlen. pose proof (zlength_nonneg chars) as Hk.
  assert (Hspace : 4 * zlength ds <= max_size - (zlength chars + 1)).
  { apply (buffer_room n0 (zlength ds) (zlength chars) (digits_value ds) (radix_bits radix)); try lia.
    now apply digits_value_lower. }
  unfold digits_size. rewrite zlength_cons, L.
  destruct (Z.ltb_spec (max_size - (1 + zlength chars)) (4 * zlength ds)); [lia |].
  destruct (trim_quotient ds ds' radix Hok Hl Hok' L Hr (eq_sym Vq)) as (Vr & Hrok & Hrl). cbv zeta in *.
  set (rest := if last ds' 0 =? 0 then removelast ds' else ds') in *. clearbody rest. destruct rest as [|d rest].
  - exists [radix_char r]. cbn [digits_value app] in *. splits; try reflexivity.
    + unfold radix_value. cbn [fold_left]. rewrite Hdig. lia.
    + apply Forall_cons; [assumption | constructor].
    + cbn [hd]. rewrite Hdig. lia.
  - destruct Hrl as [|Hrl]; [easy |].
    assert (Hle : radix * digits_value (d :: rest) <= digits_value ds) by lia.
    pose proof (digits_value_pos _ Hrok Hrl) as Hpos'.
    destruct (IH (d :: rest) (radix_char r :: chars) Hrok Hrl) as (cs & -> & Vc & Hc & Hhd).
    + rewrite Nat2Z.inj_succ, Z.pow_succ_r in Hfuel by lia. nia.
    + rewrite zlength_cons. replace (radix_bits radix * (1 + zlength chars))
        with (radix_bits radix + radix_bits radix * zlength chars) by lia.
      rewrite Z.pow_add_r by nia. pose proof (pow2_pos (radix_bits radix * zlength chars) ltac:(nia)) as Hp.
      set (p := 2 ^ (radix_bits radix * zlength chars)) in *. eapply Z.le_lt_trans; [| apply Hroom].
      rewrite Z.mul_assoc. apply Z.mul_le_mono_nonneg_r; [lia |]. nia.
    + exists (cs ++ [radix_char r]). rewrite <- app_assoc. splits; try reflexivity.
      * rewrite radix_value_snoc, Vc, Hdig, Vr. lia.
      * apply Forall_app. split; [assumption | apply Forall_cons; [assumption | constructor]].
      * destruct cs as [|c cs]; [| exact Hhd]. change (radix_value radix []) with 0 in Vc. lia.
Qed.

(** A number with a non-zero first digit is at least the power of its length. *)
Lemma radix_value_lower radix cs : 2 <= radix -> Forall (is_radix_char radix) cs -> cs <> [] ->
  char_digit (hd 48 cs) <> 0 -> radix ^ (zlength cs - 1) <= radix_value radix cs.
Proof.
  intros Hr Hc. induction cs as [|c cs IH] using rev_ind; [easy |]. intros _ Hhd.
  apply Forall_app in Hc as [Hc H1]. inversion_clear H1 as [|? ? [_ Hd] _]. rewrite radix_value_snoc, zlength_snoc, Z.add_simpl_r.
  destruct cs as [|x cs]; [change (radix_value radix []) with 0; rewrite (@zlength_nil Z), Z.pow_0_r; cbn in Hhd; lia |].
  specialize (IH Hc ltac:(easy) Hhd). pose proof (zlength_pos (x :: cs) ltac:(easy)).
  replace (zlength (x :: cs)) with (1 + (zlength (x :: cs) - 1)) by lia.
  rewrite Z.pow_add_r, Z.pow_1_r by lia. nia.
Qed.

(** The characters leave at least three bytes of the buffer free. *)
Lemma printed_length radix cs n0 max_size : 2 <= radix <= 36 -> 0 <= n0 -> Forall (is_radix_char radix) cs ->
  char_digit (hd 48 cs) <> 0 -> radix_value radix cs < B32 ^ n0 ->
  32 * n0 <= radix_bits radix * (max_size - 4) -> zlength cs < max_size.
Proof.
  intros Hr Hn0 Hc Hhd Hv Hmax. destruct (radix_bits_spec radix Hr) as [Hb Hbits].
  assert (Hne : cs <> []) by (intros ->; now cbn in Hhd). pose proof (zlength_pos _ Hne).
  pose proof (radix_value_lower radix cs ltac:(lia) Hc Hne Hhd) as Hlow.
  assert (Hexp : radix_bits radix * (zlength cs - 1) < 32 * n0).
  { apply (Z.pow_lt_mono_r_iff 2); [lia | lia |]. rewrite Z.pow_mul_r, <- pow32_pow2 by lia.
    eapply Z.le_lt_trans; [| apply Hv]. eapply Z.le_trans; [| apply Hlow].
    apply Z.pow_le_mono_l. split; [apply Z.lt_le_incl, pow2_pos; lia | assumption]. }
  nia.
Qed.

Section Correctness.
Context {HA : HeapAlloc}.

(** What a successful conversion delivers *)
Definition printed (v : ecma_extended_primitive_t) (radix : Z) (res : option (option (list Z) * Z * Z)) (held : Z) : Prop :=
  match res with
  | None => ~ heap_ample /\ held = 0
  | Some (chars, char_start, char_size) =>
      exists cs, chars = Some cs /\ radix_value radix cs = big_uint_value v
        /\ Forall (is_radix_char radix) cs /\ char_digit (hd 48 cs) <> 0
        /\ char_start = char_size - zlength cs /\ 0 < char_start /\ held = char_size
  end.

Lemma ecma_big_uint_to_string_spec wide v radix : big_uint_wf v -> 2 <= radix <= 36 ->
  wp (ecma_big_uint_to_string wide v radix) (printed v radix).
Proof.
  intros Hv Hr. unfold ecma_big_uint_to_string. rewrite (wf_size _ Hv).
  destruct (wf_bounds _ Hv) as (Hok & Hpos & Hne & Hlo & Hhi). pose proof (wf_max _ Hv) as Hm.
  unfold digits_size, ECMA_BIGINT_MAX_SIZE in *. pose proof (zlength_nonneg (bigint_digits v)) as Hlen.
  pose proof (to_string_max_size_spec (zlength (bigint_digits v)) radix ltac:(lia) Hr) as Hsize.
  set (max_size := to_string_max_size _ _) in *.
  destruct (to_string_loop_spec wide max_size radix (zlength (bigint_digits v)) Hr Hlen Hsize
              (32 * length (bigint_digits v)) (bigint_digits v) []) as (cs & -> & Vc & Hc & Hhd).
  - assumption.
  - apply Hv.
  - rewrite pow32_pow2 in Hhi by lia. unfold zlength in Hhi.
    replace (Z.of_nat (32 * length (bigint_digits v))) with (32 * Z.of_nat (length (bigint_digits v))) by lia. apply Hhi.
  - rewrite (@zlength_nil Z), Z.mul_0_r, Z.pow_0_r, Z.mul_1_r. apply Hhi.
  - rewrite app_nil_r. do 2 wp_step; [| intros Hf]; cbn [negb]; wp_step; cbn [printed]; [| easy].
    exists cs. splits; try assumption; try reflexivity; [| lia].
    enough (zlength cs < max_size) by lia. apply (printed_length radix cs (zlength (bigint_digits v))); try assumption.
    rewrite Vc. apply Hhi.
Qed.

(** Ecma_big_uint_to_string prints a magnitude in any radix from 2 to 36:
    reading the characters back gives the number, there is no leading zero, the
    characters never run over the digits that are still being divided in the
    same buffer and at least one byte stays free in front of them for a sign,
    whichever of the two division variants is compiled in. *)
Theorem ecma_big_uint_to_string_correct wide v radix : big_uint_wf v -> 2 <= radix <= 36 ->
  wp (ecma_big_uint_to_string wide v radix) (printed v radix).
Proof. apply ecma_big_uint_to_string_spec. Qed.
End Correctness.

(** The two variants of the division step of ecma_big_uint_to_string, with
    64-bit arithmetic and with 32-bit arithmetic on three bit ranges, compute
    the same digits and the same remainder. *)
Theorem radix_divide_variants_agree ds radix : digits_ok ds -> 2 <= radix <= 36 ->
  radix_divide_narrow ds radix = radix_divide_wide ds radix.
Proof.
  intros Hok Hr. destruct (radix_divide_narrow ds radix) as [d1 r1] eqn:E1, (radix_divide_wide ds radix) as [d2 r2] eqn:E2.
  destruct (radix_divide_spec false ds radix d1 r1 Hok Hr E1) as (V1 & H1 & O1 & L1).
  destruct (radix_divide_spec true ds radix d2 r2 Hok Hr E2) as (V2 & H2 & O2 & L2).
  destruct (div_mod_unique_pos _ _ _ _ H1 V1) as [Q1 R1], (div_mod_unique_pos _ _ _ _ H2 V2) as [Q2 R2].
  f_equal; [apply digits_value_inj; congruence || assumption | congruence].
Qed.

Lemma ecma_big_uint_to_string_witness :
  @wp (CounterHeap true) _ (@ecma_big_uint_to_string (CounterHeap true) false (big_uint_of [10; 20; 30]) 36)
    (@printed (CounterHeap true) (big_uint_of [10; 20; 30]) 36).
Proof. apply (@ecma_big_uint_to_string_correct (CounterHeap true)); [wf_of | lia]. Defined.

Lemma radix_divide_variants_witness : radix_divide_narrow [7; 8; 9] 10 = radix_divide_wide [7; 8; 9] 10.
Proof.
  apply (radix_divide_variants_agree [7; 8; 9] 10); [| lia].
  repeat (apply Forall_cons; [unfold is_u32; lia |]). constructor.
Defined.
