(* ===== verification/BigInt.v ===== *)
(** * BigInt values: src/jjs-core/ecma/operations/ecma-bigint.c

    Signed integers: zero is a special ecma value, every other number is a
    magnitude (BigUint) whose size field carries the sign in bit 0.  This file
    has the operators of the language (unary, addition and subtraction,
    multiplication, division and remainder, shifts, power, bitwise operators),
    equality and order; conversions are in BigIntNumber and BigIntParse.

    An operation may return one of its operands with an additional reference,
    a new object, zero, or a pending exception.  The theorems say that the
    result is the number ECMA-262 asks for and that the operation keeps exactly
    the bytes of a new result. *)
From Stdlib Require Import ZArith List Lia Bool.
From S2P Require Import Prelude HeapIface BigUint BigUintBits BigUintDiv.
Import ListNotations.
#[local] Open Scope Z_scope.
#[local] Open Scope heap_scope.

Definition ECMA_BIGINT_SIGN : Z := 1.

(** An ecma value that is a BigInt *)
Inductive bigint_value :=
| ECMA_BIGINT_ZERO
| BIGINT (value_p : ecma_extended_primitive_t).

(** The exceptions the operations raise *)
Inductive bigint_error :=
| ECMA_ERR_ALLOCATE_BIGINT_VALUE
| ECMA_ERR_BIGINT_ZERO_DIVISION
| ECMA_ERR_NEGATIVE_EXPONENT_IS_NOT_ALLOWED_FOR_BIGINTS
| ECMA_ERR_INFINITY_OR_NAN_CANNOT_BE_CONVERTED_TO_BIGINT
| ECMA_ERR_ONLY_INTEGER_NUMBERS_CAN_BE_CONVERTED_TO_BIGINT
| ECMA_ERR_VALUE_CANNOT_BE_CONVERTED_TO_BIGINT
| ECMA_ERR_STRING_CANNOT_BE_CONVERTED_TO_BIGINT_VALUE
| ECMA_ERR_ALLOCATE_BIGINT_STRING.

Inductive bigint_outcome :=
| BI_ZERO (** ECMA_BIGINT_ZERO *)
| BI_NEW (result_p : ecma_extended_primitive_t) (** a new object *)
| BI_REF (operand_p : ecma_extended_primitive_t) (** an operand, after its reference count was increased *)
| BI_ERROR (error : bigint_error)
| BI_INVALID. (** ECMA_BIGINT_POINTER_TO_ZERO dereferenced as an object *)

Definition sign_of (v : ecma_extended_primitive_t) : Z := Z.land (bigint_sign_and_size v) ECMA_BIGINT_SIGN.

(** value_p->u.bigint_sign_and_size |= sign *)
Definition or_sign (v : ecma_extended_primitive_t) (sign : Z) : ecma_extended_primitive_t :=
  mk_primitive (refs_and_type v) (Z.lor (bigint_sign_and_size v) sign) (bigint_digits v).

(** A result pointer turned into a value by code that does not expect zero *)
Definition make_value (result_p : bigint_ptr) (sign : Z) : bigint_outcome :=
  match result_p with
  | BIGINT_NULL => BI_ERROR ECMA_ERR_ALLOCATE_BIGINT_VALUE
  | BIGINT_POINTER_TO_ZERO => BI_INVALID
  | BIGINT_PTR v => BI_NEW (or_sign v sign)
  end.

(** The same where the code tests for ECMA_BIGINT_POINTER_TO_ZERO *)
Definition make_value_or_zero (result_p : bigint_ptr) (sign : Z) : bigint_outcome :=
  match result_p with BIGINT_POINTER_TO_ZERO => BI_ZERO | _ => make_value result_p sign end.

(** ecma_copy_value on a BigInt *)
Definition ecma_copy_value (v : bigint_value) : bigint_outcome :=
  match v with
  | ECMA_BIGINT_ZERO => BI_ZERO
  | BIGINT p => BI_REF (ecma_ref_extended_primitive p)
  end.

Inductive ecma_bigint_unary_operation_type :=
| ECMA_BIGINT_UNARY_BITWISE_NOT
| ECMA_BIGINT_UNARY_INCREASE
| ECMA_BIGINT_UNARY_DECREASE.

Definition is_increase (type : ecma_bigint_unary_operation_type) : bool :=
  match type with ECMA_BIGINT_UNARY_INCREASE => true | _ => false end.

Definition is_decrease (type : ecma_bigint_unary_operation_type) : bool :=
  match type with ECMA_BIGINT_UNARY_DECREASE => true | _ => false end.

(** Convert 0 to 1, and 1 to -1; convert 0 to -1, and 1 to 1 *)
Definition ECMA_BIGINT_TO_SIGN (value : Z) : Z := 1 - Z.shiftl value 1.
Definition ECMA_BIGINT_TO_NEGATED_SIGN (value : Z) : Z := -1 + Z.shiftl value 1.

Definition ecma_bigint_get_sign (value : bigint_value) : bool :=
  match value with
  | ECMA_BIGINT_ZERO => false
  | BIGINT p => negb (sign_of p =? 0)
  end.

(** memcmp (...) == 0 on two runs of digits *)
Definition digits_eqb (a b : list Z) : bool :=
  (Nat.eqb (length a) (length b)) && forallb (fun p => fst p =? snd p) (combine a b).

Definition ecma_bigint_is_equal_to_bigint (left right : bigint_value) : bool :=
  match left, right with
  | ECMA_BIGINT_ZERO, ECMA_BIGINT_ZERO => true
  | ECMA_BIGINT_ZERO, _ => false
  | _, ECMA_BIGINT_ZERO => false
  | BIGINT l, BIGINT r =>
      if negb (bigint_sign_and_size l =? bigint_sign_and_size r) then false
      else
        let n := Z.to_nat (ECMA_BIGINT_GET_SIZE l / sizeof_digit) in
        digits_eqb (firstn n (bigint_digits l)) (firstn n (bigint_digits r))
  end.

Definition ecma_bigint_compare_to_bigint (left right : bigint_value) : Z :=
  match left, right with
  | ECMA_BIGINT_ZERO, ECMA_BIGINT_ZERO => 0
  | ECMA_BIGINT_ZERO, BIGINT r => ECMA_BIGINT_TO_NEGATED_SIGN (sign_of r)
  | BIGINT l, ECMA_BIGINT_ZERO => ECMA_BIGINT_TO_SIGN (sign_of l)
  | BIGINT l, BIGINT r =>
      if negb (Z.lxor (sign_of l) (sign_of r) =? 0) then ECMA_BIGINT_TO_SIGN (sign_of l)
      else if sign_of l =? 0 then ecma_big_uint_compare l r
      else - ecma_big_uint_compare l r
  end.

Section Operations.
Context {HA : HeapAlloc}.

Definition ecma_bigint_create_from_digit (digit : Z) (sign : bool) : M bigint_outcome :=
  result_value_p <- ecma_bigint_create sizeof_digit;;
  ret (match result_value_p with
       | None => BI_ERROR ECMA_ERR_ALLOCATE_BIGINT_VALUE
       | Some r =>
           let r := if sign then or_sign r ECMA_BIGINT_SIGN else r in
           BI_NEW (set_digits r [digit])
       end).

Definition ecma_bigint_negate (v : ecma_extended_primitive_t) : M bigint_outcome :=
  let size := ECMA_BIGINT_GET_SIZE v in
  result_p <- ecma_bigint_create size;;
  ret (match result_p with
       | None => BI_ERROR ECMA_ERR_ALLOCATE_BIGINT_VALUE
       | Some r =>
           BI_NEW (mk_primitive (Z.lor ECMA_EXTENDED_PRIMITIVE_REF_ONE ECMA_TYPE_BIGINT)
                     (Z.lxor (bigint_sign_and_size v) ECMA_BIGINT_SIGN)
                     (firstn (Z.to_nat (size / sizeof_digit)) (bigint_digits v)))
       end).

Definition ecma_bigint_unary (value : bigint_value) (type : ecma_bigint_unary_operation_type) : M bigint_outcome :=
  match value with
  | ECMA_BIGINT_ZERO => ecma_bigint_create_from_digit 1 (negb (is_increase type))
  | BIGINT v =>
      let sign := if negb (is_decrease type) then ECMA_BIGINT_SIGN else 0 in
      if (bigint_sign_and_size v =? Z.lor sizeof_digit sign) && (hd 0 (bigint_digits v) =? 1)
      then ret BI_ZERO
      else if sign_of v =? Z.lxor sign ECMA_BIGINT_SIGN then
        result_p <- ecma_big_uint_increase v;;
        ret (make_value result_p (if negb (is_increase type) then ECMA_BIGINT_SIGN else 0))
      else
        result_p <- ecma_big_uint_decrease v;;
        ret (make_value result_p (if is_increase type then ECMA_BIGINT_SIGN else 0))
  end.

Definition ecma_bigint_add_sub (left right : bigint_value) (is_add : bool) : M bigint_outcome :=
  match right, left with
  | ECMA_BIGINT_ZERO, _ => ret (ecma_copy_value left)
  | BIGINT r, ECMA_BIGINT_ZERO =>
      if negb is_add then ecma_bigint_negate r else ret (BI_REF (ecma_ref_extended_primitive r))
  | BIGINT r, BIGINT l =>
      let sign := if is_add then 0 else ECMA_BIGINT_SIGN in
      if Z.land (Z.lxor (bigint_sign_and_size l) (bigint_sign_and_size r)) ECMA_BIGINT_SIGN =? sign then
        result_p <- ecma_big_uint_add l r;;
        ret (make_value result_p (sign_of l))
      else
        let compare_result := ecma_big_uint_compare l r in
        if compare_result =? 0 then ret BI_ZERO
        else if 0 <? compare_result then
          result_p <- ecma_big_uint_sub l r;;
          ret (make_value result_p (sign_of l))
        else
          let sign := if negb is_add then Z.lxor (sign_of r) ECMA_BIGINT_SIGN else sign_of r in
          result_p <- ecma_big_uint_sub r l;;
          ret (make_value result_p sign)
  end.

Definition ecma_bigint_mul (left right : bigint_value) : M bigint_outcome :=
  match left, right with
  | BIGINT l, BIGINT r =>
      let is_one v := (ECMA_BIGINT_GET_SIZE v =? sizeof_digit) && (ECMA_BIGINT_GET_LAST_DIGIT v =? 1) in
      if is_one l then
        if negb (sign_of l =? 0) then ecma_bigint_negate r else ret (BI_REF (ecma_ref_extended_primitive r))
      else if is_one r then
        if negb (sign_of r =? 0) then ecma_bigint_negate l else ret (BI_REF (ecma_ref_extended_primitive l))
      else
        result_p <- ecma_big_uint_mul l r;;
        ret (make_value result_p
               (Z.land (Z.lxor (bigint_sign_and_size l) (bigint_sign_and_size r)) ECMA_BIGINT_SIGN))
  | _, _ => ret BI_ZERO
  end.

Definition ecma_bigint_div_mod (left right : bigint_value) (is_mod : bool) : M bigint_outcome :=
  match right, left with
  | ECMA_BIGINT_ZERO, _ => ret (BI_ERROR ECMA_ERR_BIGINT_ZERO_DIVISION)
  | _, ECMA_BIGINT_ZERO => ret BI_ZERO
  | BIGINT r, BIGINT l =>
      let sign :=
        if is_mod then sign_of l
        else Z.land (Z.lxor (bigint_sign_and_size l) (bigint_sign_and_size r)) ECMA_BIGINT_SIGN in
      let compare_result := ecma_big_uint_compare l r in
      if compare_result <? 0 then
        ret (if negb is_mod then BI_ZERO else BI_REF (ecma_ref_extended_primitive l))
      else if compare_result =? 0 then
        if is_mod then ret BI_ZERO
        else
          result_p <- ecma_bigint_create sizeof_digit;;
          ret (make_value (match result_p with
                           | None => BIGINT_NULL
                           | Some p => BIGINT_PTR (set_digits p [1])
                           end) sign)
      else
        result_p <- ecma_big_uint_div_mod l r is_mod;;
        ret (make_value_or_zero result_p sign)
  end.

Definition ecma_bigint_shift (left right : bigint_value) (is_left : bool) : M bigint_outcome :=
  match left, right with
  | ECMA_BIGINT_ZERO, _ => ret BI_ZERO
  | BIGINT l, ECMA_BIGINT_ZERO => ret (BI_REF (ecma_ref_extended_primitive l))
  | BIGINT l, BIGINT r =>
      let is_left := if negb (sign_of r =? 0) then negb is_left else is_left in
      if sizeof_digit <? ECMA_BIGINT_GET_SIZE r then
        if is_left then ret (BI_ERROR ECMA_ERR_ALLOCATE_BIGINT_VALUE)
        else if negb (sign_of l =? 0) then ecma_bigint_create_from_digit 1 true
        else ret BI_ZERO
      else
        let shift := ECMA_BIGINT_GET_LAST_DIGIT r in
        let left_sign := sign_of l in
        if is_left then
          result_p <- ecma_big_uint_shift_left l shift;;
          ret (make_value result_p left_sign)
        else
          result_p <- ecma_big_uint_shift_right l shift (negb (left_sign =? 0));;
          ret (make_value_or_zero result_p left_sign)
  end.

Definition ecma_bigint_pow (left right : bigint_value) : M bigint_outcome :=
  match right, left with
  | ECMA_BIGINT_ZERO, _ => ecma_bigint_create_from_digit 1 false
  | BIGINT r, _ =>
      if negb (sign_of r =? 0) then ret (BI_ERROR ECMA_ERR_NEGATIVE_EXPONENT_IS_NOT_ALLOWED_FOR_BIGINTS)
      else
        match left with
        | ECMA_BIGINT_ZERO => ret BI_ZERO
        | BIGINT l =>
            let base := if ECMA_BIGINT_GET_SIZE l =? sizeof_digit then hd 0 (bigint_digits l) else 0 in
            if base =? 1 then
              if (sign_of l =? 0) || ECMA_BIGINT_NUMBER_IS_ODD (hd 0 (bigint_digits r))
              then ret (BI_REF (ecma_ref_extended_primitive l))
              else ecma_bigint_create_from_digit 1 false
            else if sizeof_digit <? ECMA_BIGINT_GET_SIZE r then ret (BI_ERROR ECMA_ERR_ALLOCATE_BIGINT_VALUE)
            else
              let power := hd 0 (bigint_digits r) in
              if power =? 1 then ret (BI_REF (ecma_ref_extended_primitive l))
              else
                result_p <- (if base =? 2 then ecma_big_uint_shift_left l (u32 (power - 1))
                             else ecma_big_uint_pow l power);;
                ret (make_value result_p
                       (if negb (sign_of l =? 0) && ECMA_BIGINT_NUMBER_IS_ODD power then ECMA_BIGINT_SIGN else 0))
        end
  end.

Definition ecma_bigint_bitwise_op (operation_and_options : Z) (left right : ecma_extended_primitive_t) : M bigint_outcome :=
  result_p <- ecma_big_uint_bitwise_op operation_and_options left right;;
  ret (make_value_or_zero result_p
         (if has_option operation_and_options ECMA_BIG_UINT_BITWISE_INCREASE_RESULT then ECMA_BIGINT_SIGN else 0)).

Definition ecma_bigint_and (left right : bigint_value) : M bigint_outcome :=
  match left, right with
  | BIGINT l, BIGINT r =>
      if sign_of l =? 0 then
        if sign_of r =? 0 then ecma_bigint_bitwise_op ECMA_BIG_UINT_BITWISE_AND l r
        else ecma_bigint_bitwise_op (Z.lor ECMA_BIG_UINT_BITWISE_AND_NOT ECMA_BIG_UINT_BITWISE_DECREASE_RIGHT) l r
      else if sign_of r =? 0 then
        ecma_bigint_bitwise_op (Z.lor ECMA_BIG_UINT_BITWISE_AND_NOT ECMA_BIG_UINT_BITWISE_DECREASE_RIGHT) r l
      else
        ecma_bigint_bitwise_op
          (Z.lor (Z.lor ECMA_BIG_UINT_BITWISE_OR ECMA_BIG_UINT_BITWISE_DECREASE_BOTH) ECMA_BIG_UINT_BITWISE_INCREASE_RESULT) l r
  | _, _ => ret BI_ZERO
  end.

Definition ecma_bigint_or (left right : bigint_value) : M bigint_outcome :=
  match left, right with
  | ECMA_BIGINT_ZERO, _ => ret (ecma_copy_value right)
  | _, ECMA_BIGINT_ZERO => ret (ecma_copy_value left)
  | BIGINT l, BIGINT r =>
      if sign_of l =? 0 then
        if sign_of r =? 0 then ecma_bigint_bitwise_op ECMA_BIG_UINT_BITWISE_OR l r
        else
          ecma_bigint_bitwise_op
            (Z.lor (Z.lor ECMA_BIG_UINT_BITWISE_AND_NOT ECMA_BIG_UINT_BITWISE_DECREASE_LEFT) ECMA_BIG_UINT_BITWISE_INCREASE_RESULT) r l
      else if sign_of r =? 0 then
        ecma_bigint_bitwise_op
          (Z.lor (Z.lor ECMA_BIG_UINT_BITWISE_AND_NOT ECMA_BIG_UINT_BITWISE_DECREASE_LEFT) ECMA_BIG_UINT_BITWISE_INCREASE_RESULT) l r
      else
        ecma_bigint_bitwise_op
          (Z.lor (Z.lor ECMA_BIG_UINT_BITWISE_AND ECMA_BIG_UINT_BITWISE_DECREASE_BOTH) ECMA_BIG_UINT_BITWISE_INCREASE_RESULT) l r
  end.

Definition ecma_bigint_xor (left right : bigint_value) : M bigint_outcome :=
  match left, right with
  | ECMA_BIGINT_ZERO, _ => ret (ecma_copy_value right)
  | _, ECMA_BIGINT_ZERO => ret (ecma_copy_value left)
  | BIGINT l, BIGINT r =>
      if sign_of l =? 0 then
        if sign_of r =? 0 then ecma_bigint_bitwise_op ECMA_BIG_UINT_BITWISE_XOR l r
        else
          ecma_bigint_bitwise_op
            (Z.lor (Z.lor ECMA_BIG_UINT_BITWISE_XOR ECMA_BIG_UINT_BITWISE_DECREASE_RIGHT) ECMA_BIG_UINT_BITWISE_INCREASE_RESULT) l r
      else if sign_of r =? 0 then
        ecma_bigint_bitwise_op
          (Z.lor (Z.lor ECMA_BIG_UINT_BITWISE_XOR ECMA_BIG_UINT_BITWISE_DECREASE_LEFT) ECMA_BIG_UINT_BITWISE_INCREASE_RESULT) l r
      else ecma_bigint_bitwise_op (Z.lor ECMA_BIG_UINT_BITWISE_XOR ECMA_BIG_UINT_BITWISE_DECREASE_BOTH) l r
  end.
End Operations.

(** ** What the values mean *)

(** A stored BigInt: a well-formed magnitude whose size field adds the sign bit *)
Definition bigint_wf (v : ecma_extended_primitive_t) : Prop :=
  big_uint_wf v /\ exists s, 0 <= s <= 1 /\ bigint_sign_and_size v = digits_size (bigint_digits v) + s.

Definition bigint_int (v : ecma_extended_primitive_t) : Z :=
  if sign_of v =? 0 then big_uint_value v else - big_uint_value v.

Definition bigint_ok (v : bigint_value) : Prop :=
  match v with ECMA_BIGINT_ZERO => True | BIGINT p => bigint_wf p end.

(** The integer a BigInt value denotes *)
Definition bigint_to_Z (v : bigint_value) : Z :=
  match v with ECMA_BIGINT_ZERO => 0 | BIGINT p => bigint_int p end.

Definition int_too_large (x : Z) : Prop := big_uint_too_large (Z.abs x).

Section Specification.
Context {HA : HeapAlloc}.

(** [bigint_result x o held]: the outcome [o] of an operation whose result is
    [x], with [held] bytes more than before; an allocation error in an ample
    heap means that the result does not fit. *)
Definition bigint_result (x : Z) (o : bigint_outcome) (held : Z) : Prop :=
  match o with
  | BI_ZERO => x = 0 /\ held = 0
  | BI_NEW p =>
      bigint_int p = x /\ bigint_wf p
      /\ refs_and_type p = Z.lor ECMA_EXTENDED_PRIMITIVE_REF_ONE ECMA_TYPE_BIGINT
      /\ held = primitive_bytes (bigint_digits p)
  | BI_REF p => bigint_int p = x /\ bigint_wf p /\ held = 0
  | BI_ERROR ECMA_ERR_ALLOCATE_BIGINT_VALUE => held = 0 /\ (heap_ample -> int_too_large x)
  | _ => False
  end.
End Specification.

(** ** Signs *)

Lemma sign_bit n s : 0 <= s <= 1 -> Z.land (4 * n + s) 1 = s.
Proof.
  intros Hs. rewrite (land_ones' _ 1 1) by (reflexivity || lia). change (2 ^ 1) with 2.
  Z.div_mod_to_equations; lia.
Qed.

Lemma sign_bit_0 n : Z.land (4 * n) 1 = 0.
Proof. rewrite <- (Z.add_0_r (4 * n)). apply sign_bit. lia. Qed.

Lemma sign_of_wf v : bigint_wf v ->
  0 <= sign_of v <= 1 /\ bigint_sign_and_size v = digits_size (bigint_digits v) + sign_of v.
Proof.
  intros [_ (s & Hs & E)]. unfold sign_of, digits_size in *. rewrite E.
  change ECMA_BIGINT_SIGN with 1. rewrite sign_bit by assumption. auto.
Qed.

Lemma lor_sign n s : 0 <= s <= 1 -> Z.lor (4 * n) s = 4 * n + s.
Proof. intros. change 4 with (2 ^ 2). rewrite Z.mul_comm. apply lor_mul_low; lia. Qed.

Lemma get_size_sign ds s : 0 <= s <= 1 -> digits_size ds <= ECMA_BIGINT_MAX_SIZE ->
  Z.land (digits_size ds + s) 4294967292 = digits_size ds.
Proof.
  intros Hs Hm. unfold digits_size, ECMA_BIGINT_MAX_SIZE in *. pose proof (zlength_nonneg ds).
  rewrite land_size_mask by (unfold is_u32; lia). Z.div_mod_to_equations; lia.
Qed.

(** A new magnitude with a sign *)
Lemma or_sign_wf v s : big_uint_wf v -> big_uint_fresh v -> 0 <= s <= 1 ->
  bigint_wf (or_sign v s) /\ sign_of (or_sign v s) = s /\ bigint_digits (or_sign v s) = bigint_digits v
  /\ refs_and_type (or_sign v s) = 14.
Proof.
  intros Hv [Hr Hf] Hs.
  assert (E : bigint_sign_and_size (or_sign v s) = digits_size (bigint_digits v) + s).
  { cbn [or_sign bigint_sign_and_size]. rewrite Hf. now apply lor_sign. }
  assert (Es : sign_of (or_sign v s) = s).
  { unfold sign_of. rewrite E. now apply sign_bit. }
  splits; try reflexivity; try assumption.
  split; [| now exists s]. split; try apply Hv.
  unfold ECMA_BIGINT_GET_SIZE. rewrite E. apply get_size_sign; [assumption | apply Hv].
Qed.

Lemma bigint_int_cases v : bigint_wf v ->
  (sign_of v = 0 /\ bigint_int v = big_uint_value v) \/ (sign_of v = 1 /\ bigint_int v = - big_uint_value v).
Proof.
  intros H. destruct (sign_of_wf v H) as [Hs _]. unfold bigint_int.
  destruct (Z.eqb_spec (sign_of v) 0); [left | right]; lia.
Qed.

Lemma bigint_pos v : bigint_wf v -> 0 < big_uint_value v.
Proof. intros [H _]. now apply wf_value_pos. Qed.

Lemma lxor_signs l r : bigint_wf l -> bigint_wf r ->
  Z.land (Z.lxor (bigint_sign_and_size l) (bigint_sign_and_size r)) ECMA_BIGINT_SIGN = Z.lxor (sign_of l) (sign_of r).
Proof.
  intros _ _. unfold sign_of. apply Z.bits_inj'. intros i _.
  rewrite !Z.land_spec, !Z.lxor_spec, !Z.land_spec.
  now destruct (Z.testbit (bigint_sign_and_size l) i), (Z.testbit (bigint_sign_and_size r) i), (Z.testbit ECMA_BIGINT_SIGN i).
Qed.

Lemma wf_ref_int v : bigint_wf v ->
  bigint_wf (ecma_ref_extended_primitive v) /\ bigint_int (ecma_ref_extended_primitive v) = bigint_int v.
Proof. intros [H (s & Hs & E)]. split; [split; [now apply wf_ref | now exists s] | reflexivity]. Qed.

Section Results.
Context {HA : HeapAlloc}.

Lemma make_value_result m r held s x : 0 < m -> 0 <= s <= 1 -> big_uint_result m r held ->
  x = (if s =? 0 then m else - m) -> bigint_result x (make_value r s) held.
Proof.
  intros Hm Hs Hr ->. destruct r as [ | | v]; cbn [make_value bigint_result big_uint_result] in *.
  - destruct Hr as [-> Hr]. split; [reflexivity |]. intros Ha. unfold int_too_large.
    replace (Z.abs _) with m by (destruct (s =? 0); lia). auto.
  - lia.
  - destruct Hr as (Hv & Hw & Hf & ->). destruct (or_sign_wf v s Hw Hf Hs) as (W & Es & Ed & Er).
    splits; try assumption; [| now rewrite Ed]. unfold bigint_int. rewrite Es. unfold big_uint_value. rewrite Ed.
    fold (big_uint_value v). now rewrite Hv.
Qed.

Lemma make_value_or_zero_result m r held s x : 0 <= m -> 0 <= s <= 1 -> big_uint_result m r held ->
  x = (if s =? 0 then m else - m) -> bigint_result x (make_value_or_zero r s) held.
Proof.
  intros Hm Hs Hr Hx. destruct r as [ | | v]; cbn [make_value_or_zero].
  - destruct (Z.eq_dec m 0) as [->|]; [| apply (make_value_result m); try assumption; lia].
    destruct Hr as [-> Hr]. split; [reflexivity |]. intros Ha. specialize (Hr Ha).
    assert (x = 0) as -> by (destruct (s =? 0); lia). exact Hr.
  - destruct Hr as [-> ->]. cbn. destruct (s =? 0); lia.
  - apply (make_value_result m); try assumption. destruct Hr as (<- & Hw & _). now apply wf_value_pos.
Qed.

Lemma ref_result v : bigint_wf v -> bigint_result (bigint_int v) (BI_REF (ecma_ref_extended_primitive v)) 0.
Proof. intros H. destruct (wf_ref_int v H) as [W E]. cbn [bigint_result]. rewrite E. auto. Qed.

Lemma copy_result v : bigint_ok v -> bigint_result (bigint_to_Z v) (ecma_copy_value v) 0.
Proof. destruct v; cbn [bigint_ok bigint_to_Z ecma_copy_value]; [easy | apply ref_result]. Qed.

Lemma one_digit_result d : 0 < d < B32 ->
  big_uint_result d (BIGINT_PTR (mk_primitive 14 4 [d])) (ECMA_BIGINT_GET_BYTE_SIZE 4 + sizeof_primitive).
Proof.
  intros Hd. pose proof (primitive_fresh 4 [d] eq_refl) as Hf. cbn [big_uint_result].
  splits; try apply Hf; try reflexivity.
  - unfold big_uint_value. cbn [bigint_digits digits_value]. lia.
  - apply fresh_wf; [assumption | | cbn; lia | vm_compute; discriminate].
    apply Forall_cons; [unfold is_u32; lia | constructor].
Qed.

Lemma wp_create_from_digit d sign : 0 < d < B32 ->
  wp (ecma_bigint_create_from_digit d sign) (bigint_result (if sign then - d else d)).
Proof.
  intros Hd. unfold ecma_bigint_create_from_digit. wp_step. apply wp_create; intros Hm; wp_step; rewrite Z.add_0_r.
  - replace (BI_NEW _) with (make_value (BIGINT_PTR (mk_primitive 14 4 [d])) (if sign then 1 else 0)) by now destruct sign.
    eapply make_value_result; [| | now apply one_digit_result |]; destruct sign; cbn; lia.
  - split; [reflexivity |]. intros Ha. specialize (Hm Ha). unfold ECMA_BIGINT_MAX_SIZE in Hm. lia.
Qed.

Lemma wp_negate v : bigint_wf v -> wp (ecma_bigint_negate v) (bigint_result (- bigint_int v)).
Proof.
  intros H. destruct (sign_of_wf v H) as [Hs E]. pose proof H as [Hw _]. unfold ecma_bigint_negate.
  rewrite (wf_size _ Hw). pose proof (wf_max _ Hw) as Hm.
  replace (Z.to_nat (digits_size (bigint_digits v) / 4)) with (length (bigint_digits v))
    by (unfold digits_size, zlength; rewrite Z.mul_comm, Z.div_mul; lia).
  rewrite firstn_all. wp_step. apply wp_create; intros Hc; wp_step.
  - assert (Ex : Z.lxor (bigint_sign_and_size v) ECMA_BIGINT_SIGN = Z.lor (digits_size (bigint_digits v)) (1 - sign_of v)).
    { rewrite E. unfold digits_size, ECMA_BIGINT_SIGN. rewrite lor_sign by lia.
      assert (sign_of v = 0 \/ sign_of v = 1) as [-> | ->] by lia.
      - change (1 - 0) with 1. rewrite Z.add_0_r. now rewrite Z.add_nocarry_lxor by apply sign_bit_0.
      - rewrite (Z.add_nocarry_lxor (4 * _) 1) by apply sign_bit_0.
        rewrite Z.lxor_assoc, Z.lxor_nilpotent, Z.lxor_0_r. lia. }
    pose proof (make_value_result (big_uint_value v)
      (BIGINT_PTR (mk_primitive 14 (digits_size (bigint_digits v)) (bigint_digits v)))
      (primitive_bytes (bigint_digits v)) (1 - sign_of v) (- bigint_int v)) as R.
    cbn [make_value or_sign bigint_sign_and_size refs_and_type bigint_digits] in R. rewrite Ex. unfold primitive_bytes in *.
    held_is (ECMA_BIGINT_GET_BYTE_SIZE (digits_size (bigint_digits v)) + 8); [lia |]. apply R.
    + now apply bigint_pos.
    + lia.
    + apply (result_fresh (mk_primitive 14 (digits_size (bigint_digits v)) (bigint_digits v))); try apply Hw; try reflexivity.
      now apply primitive_fresh.
    + destruct (bigint_int_cases v H) as [[-> ->] | [-> ->]]; cbn; lia.
  - split; [reflexivity |]. intros Ha. specialize (Hc Ha). lia.
Qed.
End Results.

(** ** Correctness of the operators *)

(** Split on the sign of a stored value. *)
Ltac sign_cases H :=
  let S := fresh "S" in let I := fresh "I" in
  destruct (bigint_int_cases _ H) as [[S I] | [S I]]; rewrite ?S, ?I in *.

(** Hand the result of a magnitude operation to [make_value]. *)
Ltac by_magnitude lemma :=
  wp_step; eapply wp_mono; [apply lemma | let res := fresh "res" in let held := fresh "held" in
    let Hres := fresh "Hres" in intros res held Hres; wp_step; rewrite Z.add_0_r;
    (eapply make_value_result || eapply make_value_or_zero_result); [| | eassumption |] ].

Definition unary_value (type : ecma_bigint_unary_operation_type) (x : Z) : Z :=
  match type with
  | ECMA_BIGINT_UNARY_BITWISE_NOT => Z.lnot x
  | ECMA_BIGINT_UNARY_INCREASE => x + 1
  | ECMA_BIGINT_UNARY_DECREASE => x - 1
  end.

(** A one-digit value is recognised by its size field and digit. *)
Lemma one_digit_test v s : bigint_wf v -> 0 <= s <= 1 ->
  (bigint_sign_and_size v =? Z.lor sizeof_digit s) && (hd 0 (bigint_digits v) =? 1)
    = (sign_of v =? s) && (big_uint_value v =? 1).
Proof.
  intros H Hs. destruct (sign_of_wf v H) as [Hsv E]. rewrite E. pose proof H as [Hw _].
  rewrite (lor_sign 1) by assumption. unfold digits_size, big_uint_value.
  pose proof (wf_digits _ Hw) as Hok. pose proof (wf_last _ Hw) as Hl.
  destruct (bigint_digits v) as [|d [|d' ds]]; [easy | |].
  - change (zlength [d]) with 1. cbn [hd digits_value]. rewrite Z.mul_0_r, Z.add_0_r.
    replace (4 * 1 + sign_of v =? 4 * 1 + s) with (sign_of v =? s); [reflexivity |].
    destruct (Z.eqb_spec (sign_of v) s), (Z.eqb_spec (4 * 1 + sign_of v) (4 * 1 + s)); lia || reflexivity.
  - rewrite !zlength_cons. pose proof (zlength_nonneg ds).
    destruct (Z.eqb_spec (4 * (1 + (1 + zlength ds)) + sign_of v) (4 * 1 + s)); [lia |]. cbn [andb]. symmetry.
    apply andb_false_intro2, Z.eqb_neq. pose proof (digits_value_lower _ Hok Hl) as Hlow.
    rewrite !zlength_cons in Hlow. replace (1 + (1 + zlength ds) - 1) with (1 + zlength ds) in Hlow by lia.
    rewrite pow32_succ in Hlow by lia. pose proof (pow32_pos (zlength ds) ltac:(lia)). lia.
Qed.

Section Operators.
Context {HA : HeapAlloc}.

Lemma wp_bigint_unary v type : bigint_ok v ->
  wp (ecma_bigint_unary v type) (bigint_result (unary_value type (bigint_to_Z v))).
Proof.
  destruct v as [|v]; cbn [bigint_ok bigint_to_Z ecma_bigint_unary]; intros H.
  { destruct type; apply (wp_create_from_digit 1); lia. }
  pose proof (bigint_pos v H) as Hpos. pose proof H as [Hw _].
  assert (Hlnot : forall x, Z.lnot x = - x - 1) by (intros; unfold Z.lnot; lia).
  rewrite one_digit_test by (assumption || (destruct type; unfold ECMA_BIGINT_SIGN; cbn; lia)).
  destruct (_ && _) eqn:E1.
  { apply andb_prop in E1 as [E1 E2]. zbool. wp_step. split; [| reflexivity].
    sign_cases H; destruct type; unfold ECMA_BIGINT_SIGN in *; cbn in *; rewrite ?Hlnot; lia. }
  destruct (Z.eqb_spec (sign_of v) (Z.lxor (if negb (is_decrease type) then ECMA_BIGINT_SIGN else 0) ECMA_BIGINT_SIGN)) as [Es|Es].
  - by_magnitude (wp_big_uint_increase v Hw); [lia | destruct type; unfold ECMA_BIGINT_SIGN; cbn; lia |].
    sign_cases H; destruct type; unfold ECMA_BIGINT_SIGN in *; cbn in *; rewrite ?Hlnot; lia.
  - assert (Hgt : 1 < big_uint_value v).
    { apply andb_false_elim in E1 as [E1 | E1]; zbool; [exfalso | lia].
      destruct (sign_of_wf v H) as [Hs _]. destruct type; unfold ECMA_BIGINT_SIGN in *; cbn in *; lia. }
    by_magnitude (wp_big_uint_decrease v Hw Hgt); [lia | destruct type; unfold ECMA_BIGINT_SIGN; cbn; lia |].
    sign_cases H; destruct type; unfold ECMA_BIGINT_SIGN in *; cbn in *; rewrite ?Hlnot; lia.
Qed.

Lemma wp_bigint_add_sub left right is_add : bigint_ok left -> bigint_ok right ->
  wp (ecma_bigint_add_sub left right is_add)
     (bigint_result (if is_add then bigint_to_Z left + bigint_to_Z right else bigint_to_Z left - bigint_to_Z right)).
Proof.
  intros Hl Hr. destruct right as [|r]; cbn [ecma_bigint_add_sub bigint_to_Z bigint_ok] in *.
  { wp_step. replace (if is_add then _ else _) with (bigint_to_Z left) by (destruct is_add; lia). now apply copy_result. }
  destruct left as [|l]; cbn [bigint_to_Z bigint_ok] in *.
  { destruct is_add; cbn [negb]; [wp_step; now apply ref_result | now apply wp_negate]. }
  rewrite lxor_signs by assumption. pose proof (bigint_pos l Hl) as Pl. pose proof (bigint_pos r Hr) as Pr.
  pose proof Hl as [Wl _]. pose proof Hr as [Wr _]. destruct (sign_of_wf l Hl) as [Sl _], (sign_of_wf r Hr) as [Sr _].
  destruct (Z.eqb_spec (Z.lxor (sign_of l) (sign_of r)) (if is_add then 0 else ECMA_BIGINT_SIGN)) as [Es|Es].
  { by_magnitude (wp_big_uint_add l r Wl Wr); [lia | lia |].
    sign_cases Hl; sign_cases Hr; destruct is_add; unfold ECMA_BIGINT_SIGN in *; cbn in *; lia. }
  rewrite (big_uint_compare_value l r Wl Wr).
  destruct (Z.compare_spec (big_uint_value l) (big_uint_value r)) as [E|E|E]; cbn [Z.eqb Z.ltb Z.compare].
  - wp_step. split; [| reflexivity]. sign_cases Hl; sign_cases Hr; destruct is_add; unfold ECMA_BIGINT_SIGN in *; cbn in *; lia.
  - by_magnitude (wp_big_uint_sub r l Wr Wl ltac:(lia)); [lia | sign_cases Hr; destruct is_add; unfold ECMA_BIGINT_SIGN; cbn; lia |].
    sign_cases Hl; sign_cases Hr; destruct is_add; unfold ECMA_BIGINT_SIGN in *; cbn in *; lia.
  - by_magnitude (wp_big_uint_sub l r Wl Wr ltac:(lia)); [lia | lia |].
    sign_cases Hl; sign_cases Hr; destruct is_add; unfold ECMA_BIGINT_SIGN in *; cbn in *; lia.
Qed.

Lemma is_one_test v : bigint_wf v ->
  (ECMA_BIGINT_GET_SIZE v =? sizeof_digit) && (ECMA_BIGINT_GET_LAST_DIGIT v =? 1) = (big_uint_value v =? 1).
Proof.
  intros H. pose proof H as [Hw _]. rewrite (wf_size _ Hw). unfold digits_size, ECMA_BIGINT_GET_LAST_DIGIT, big_uint_value.
  pose proof (wf_digits _ Hw) as Hok. pose proof (wf_last _ Hw) as Hl.
  destruct (bigint_digits v) as [|d [|d' ds]]; [easy | |].
  - change (4 * zlength [d] =? 4) with true. cbn [last digits_value andb]. now rewrite Z.mul_0_r, Z.add_0_r.
  - rewrite !zlength_cons. pose proof (zlength_nonneg ds).
    destruct (Z.eqb_spec (4 * (1 + (1 + zlength ds))) 4); [lia |]. cbn [andb]. symmetry.
    apply Z.eqb_neq. pose proof (digits_value_lower _ Hok Hl) as Hlow.
    rewrite !zlength_cons in Hlow. replace (1 + (1 + zlength ds) - 1) with (1 + zlength ds) in Hlow by lia.
    rewrite pow32_succ in Hlow by lia. pose proof (pow32_pos (zlength ds) ltac:(lia)). lia.
Qed.

Lemma wp_bigint_mul left right : bigint_ok left -> bigint_ok right ->
  wp (ecma_bigint_mul left right) (bigint_result (bigint_to_Z left * bigint_to_Z right)).
Proof.
  intros Hl Hr. destruct left as [|l]; cbn [ecma_bigint_mul bigint_to_Z bigint_ok] in *; [wp_step; easy |].
  destruct right as [|r]; cbn [bigint_to_Z bigint_ok] in *; [wp_step; rewrite Z.mul_0_r; easy |].
  pose proof Hl as [Wl _]. pose proof Hr as [Wr _]. pose proof (bigint_pos l Hl). pose proof (bigint_pos r Hr).
  cbv zeta. rewrite !is_one_test, lxor_signs by assumption.
  destruct (Z.eqb_spec (big_uint_value l) 1) as [E|_].
  { destruct (bigint_int_cases l Hl) as [[-> ->] | [-> ->]]; cbn [Z.eqb negb]; rewrite E.
    - wp_step. rewrite Z.mul_1_l. now apply ref_result.
    - replace (- (1) * bigint_int r) with (- bigint_int r) by lia. now apply wp_negate. }
  destruct (Z.eqb_spec (big_uint_value r) 1) as [E|_].
  { destruct (bigint_int_cases r Hr) as [[-> ->] | [-> ->]]; cbn [Z.eqb negb]; rewrite E.
    - wp_step. rewrite Z.mul_1_r. now apply ref_result.
    - replace (bigint_int l * - (1)) with (- bigint_int l) by lia. now apply wp_negate. }
  by_magnitude (wp_big_uint_mul l r Wl Wr); [nia | |];
    sign_cases Hl; sign_cases Hr; cbn; lia.
Qed.
End Operators.

(** ** Division, shifts and powers *)

(** The condition under which the division of two values is exact *)
Definition bigint_div_sound (left right : bigint_value) : Prop :=
  match left, right with
  | BIGINT l, BIGINT r => div_guards_sound l r = true
  | _, _ => True
  end.

Lemma huge_power n : B32 <= n -> B32 ^ ECMA_BIGINT_MAX_DIGITS <= 2 ^ n.
Proof.
  intros Hn. rewrite pow32_pow2 by (unfold ECMA_BIGINT_MAX_DIGITS, ECMA_BIGINT_MAX_SIZE; cbn; lia).
  apply Z.pow_le_mono_r; [lia |]. change ECMA_BIGINT_MAX_DIGITS with 16384. lia.
Qed.

Lemma magnitude_small v n : big_uint_wf v -> B32 <= n -> big_uint_value v < 2 ^ n.
Proof.
  intros Hv Hn. pose proof (wf_not_too_large v Hv) as Hs. unfold big_uint_too_large in Hs.
  pose proof (huge_power n Hn). lia.
Qed.

(** Values of more than one digit are beyond every shift count that can be honoured. *)
Lemma large_value v : bigint_wf v -> sizeof_digit < ECMA_BIGINT_GET_SIZE v -> B32 <= big_uint_value v.
Proof.
  intros [Hw _] Hs. rewrite (wf_size _ Hw) in Hs. unfold digits_size in Hs.
  pose proof (digits_value_lower _ (wf_digits _ Hw) (wf_last _ Hw)) as Hlow. unfold big_uint_value.
  eapply Z.le_trans; [| apply Hlow]. rewrite <- (Z.pow_1_r B32) at 1. apply Z.pow_le_mono_r; lia.
Qed.

Lemma small_value v : bigint_wf v -> ECMA_BIGINT_GET_SIZE v <= sizeof_digit ->
  bigint_digits v = [big_uint_value v] /\ 0 < big_uint_value v < B32.
Proof.
  intros [Hw _] Hs. rewrite (wf_size _ Hw) in Hs. unfold digits_size, big_uint_value in *.
  pose proof (wf_digits _ Hw) as Hok. pose proof (wf_last _ Hw) as Hl.
  destruct (bigint_digits v) as [|d [|d' ds]]; [easy | |].
  - inversion_clear Hok as [|? ? Hd _]. cbn in Hl. unfold is_u32 in Hd. cbn [digits_value].
    rewrite Z.mul_0_r, Z.add_0_r. split; [reflexivity | lia].
  - rewrite !zlength_cons in Hs. pose proof (zlength_nonneg ds). lia.
Qed.

Lemma too_large_scale m n : 0 < m -> B32 <= n -> big_uint_too_large (m * 2 ^ n).
Proof.
  intros Hm Hn. unfold big_uint_too_large. pose proof (huge_power n Hn) as H. pose proof (pow2_pos n ltac:(lia)).
  eapply Z.le_trans; [apply H |]. nia.
Qed.

Section Operators2.
Context {HA : HeapAlloc}.

Lemma wp_bigint_div_mod left right is_mod : bigint_ok left -> bigint_ok right -> bigint_to_Z right <> 0 ->
  bigint_div_sound left right ->
  wp (ecma_bigint_div_mod left right is_mod)
     (bigint_result (if is_mod then Z.rem (bigint_to_Z left) (bigint_to_Z right)
                     else Z.quot (bigint_to_Z left) (bigint_to_Z right))).
Proof.
  intros Hl Hr Hnz Hsound. destruct right as [|r]; cbn [ecma_bigint_div_mod bigint_to_Z bigint_ok] in *; [easy |].
  destruct left as [|l]; cbn [bigint_to_Z bigint_ok bigint_div_sound] in *.
  { wp_step. split; [| reflexivity]. destruct is_mod; [apply Z.rem_0_l | apply Z.quot_0_l]; assumption. }
  pose proof (bigint_pos l Hl) as Pl. pose proof (bigint_pos r Hr) as Pr. pose proof Hl as [Wl _]. pose proof Hr as [Wr _].
  rewrite lxor_signs by assumption. set (sign := if is_mod then sign_of l else _).
  assert (Hsign : 0 <= sign <= 1).
  { unfold sign. destruct (sign_of_wf l Hl) as [Sl _], (sign_of_wf r Hr) as [Sr _].
    destruct is_mod; [assumption |]. sign_cases Hl; sign_cases Hr; cbn; lia. }
  set (m := if is_mod then big_uint_value l mod big_uint_value r else big_uint_value l / big_uint_value r).
  assert (Hx : (if is_mod then Z.rem (bigint_int l) (bigint_int r) else Z.quot (bigint_int l) (bigint_int r))
               = if sign =? 0 then m else - m).
  { unfold sign, m. destruct is_mod; sign_cases Hl; sign_cases Hr; cbn [Z.lxor Z.eqb Pos.eqb Pos.lxor Z.of_N];
      rewrite ?Z.rem_opp_l', ?Z.rem_opp_r', ?Z.quot_opp_opp, ?Z.quot_opp_l, ?Z.quot_opp_r by lia;
      rewrite ?Z.rem_mod_nonneg, ?Z.quot_div_nonneg by lia; lia. }
  rewrite Hx, (big_uint_compare_value l r Wl Wr).
  destruct (Z.compare_spec (big_uint_value l) (big_uint_value r)) as [E|E|E]; cbn [Z.eqb Z.ltb Z.compare].
  - unfold m in *. rewrite E in *. rewrite Z_mod_same_full, Z.div_same in * by lia. destruct is_mod.
    + wp_step. split; [destruct (sign =? 0); reflexivity | reflexivity].
    + wp_step. apply wp_create; intros Hm; wp_step; rewrite Z.add_0_r.
      * apply (make_value_result 1); try lia. now apply one_digit_result.
      * split; [reflexivity |]. intros Ha. specialize (Hm Ha). unfold ECMA_BIGINT_MAX_SIZE in Hm. lia.
  - wp_step. unfold m, sign. destruct is_mod; cbn [negb].
    + rewrite Z.mod_small by lia. fold (bigint_int l). now apply ref_result.
    + rewrite Z.div_small by lia. split; [| reflexivity]. destruct (Z.lxor _ _ =? 0); reflexivity.
  - assert (Hm0 : 0 <= m) by (unfold m; destruct is_mod; [apply Z.mod_pos_bound | apply Z.div_pos]; lia).
    wp_step. eapply wp_mono; [apply (wp_big_uint_div_mod l r is_mod Wl Wr ltac:(lia) Hsound) |].
    intros res held Hres. wp_step. rewrite Z.add_0_r. now apply (make_value_or_zero_result m).
Qed.

Lemma wp_bigint_shift left right is_left : bigint_ok left -> bigint_ok right ->
  wp (ecma_bigint_shift left right is_left)
     (bigint_result (Z.shiftl (bigint_to_Z left) (if is_left then bigint_to_Z right else - bigint_to_Z right))).
Proof.
  intros Hl Hr. destruct left as [|l]; cbn [ecma_bigint_shift bigint_to_Z bigint_ok] in *.
  { wp_step. now rewrite Z.shiftl_0_l. }
  destruct right as [|r]; cbn [bigint_to_Z bigint_ok] in *.
  { wp_step. replace (if is_left then 0 else - 0) with 0 by now destruct is_left. rewrite Z.shiftl_0_r. now apply ref_result. }
  pose proof (bigint_pos l Hl) as Pl. pose proof (bigint_pos r Hr) as Pr. pose proof Hl as [Wl _].
  set (go_left := if negb (sign_of r =? 0) then negb is_left else is_left).
  assert (Hn : (if is_left then bigint_int r else - bigint_int r)
               = if go_left then big_uint_value r else - big_uint_value r).
  { unfold go_left. sign_cases Hr; destruct is_left; cbn; lia. }
  rewrite Hn. clear Hn. clearbody go_left.
  set (n := big_uint_value r) in *.
  assert (Hx : Z.shiftl (bigint_int l) (if go_left then n else - n)
               = if go_left then bigint_int l * 2 ^ n else bigint_int l / 2 ^ n).
  { destruct go_left; [apply Z.shiftl_mul_pow2; lia | rewrite Z.shiftl_opp_r; apply Z.shiftr_div_pow2; lia]. }
  rewrite Hx. clear Hx. pose proof (pow2_pos n ltac:(lia)) as Hp.
  destruct (Z.ltb_spec 4 (ECMA_BIGINT_GET_SIZE r)) as [Hbig|Hsmall].
  - pose proof (large_value r Hr Hbig) as Hn. fold n in Hn. pose proof (magnitude_small l n Wl Hn) as Hlt.
    destruct go_left.
    + wp_step. split; [reflexivity |]. intros _. unfold int_too_large.
      rewrite Z.abs_mul, (Z.abs_eq (2 ^ n)) by lia. apply too_large_scale; [| assumption]. sign_cases Hl; lia.
    + sign_cases Hl; cbn [Z.eqb negb].
      * wp_step. split; [apply Z.div_small; lia | reflexivity].
      * replace (- big_uint_value l / 2 ^ n) with (-1); [apply (wp_create_from_digit 1 true); lia |].
        apply (Z.div_unique _ _ (-1) (2 ^ n - big_uint_value l)); lia.
  - destruct (small_value r Hr Hsmall) as [Ed Hn]. unfold ECMA_BIGINT_GET_LAST_DIGIT. rewrite Ed. cbn [last]. fold n in Hn |- *.
    destruct (sign_of_wf l Hl) as [Sl _]. destruct go_left.
    + by_magnitude (wp_big_uint_shift_left l n Wl Hn); [nia | assumption |]. sign_cases Hl; cbn; lia.
    + wp_step. eapply wp_mono; [apply (wp_big_uint_shift_round l n _ Wl Hn) |]. intros res held Hres.
      wp_step. rewrite Z.add_0_r. eapply make_value_or_zero_result; [| assumption | eassumption |].
      * sign_cases Hl; cbn [Z.eqb negb]; [apply Z.div_pos; lia |].
        enough (- big_uint_value l / 2 ^ n < 0) by lia. apply Z.div_lt_upper_bound; lia.
      * sign_cases Hl; cbn [Z.eqb negb]; lia.
Qed.
End Operators2.

Lemma hd_odd v : big_uint_wf v -> ECMA_BIGINT_NUMBER_IS_ODD (hd 0 (bigint_digits v)) = Z.odd (big_uint_value v).
Proof.
  intros Hv. rewrite number_is_odd. unfold big_uint_value. destruct (bigint_digits v) as [|d ds]; [reflexivity |].
  cbn [hd digits_value]. rewrite Z.odd_add, Z.odd_mul. change (Z.odd B32) with false. cbn [andb]. now rewrite xorb_false_r.
Qed.

(** The sign of a power *)
Lemma signed_power l n : bigint_wf l -> 0 <= n ->
  bigint_int l ^ n = if negb (sign_of l =? 0) && Z.odd n then - big_uint_value l ^ n else big_uint_value l ^ n.
Proof.
  intros Hl Hn. sign_cases Hl; cbn [Z.eqb negb andb]; [reflexivity |]. destruct (Z.odd n) eqn:E.
  - apply Z.pow_opp_odd. now apply Z.odd_spec.
  - apply Z.pow_opp_even. apply Z.even_spec. now rewrite <- Z.negb_odd, E.
Qed.

Section Operators3.
Context {HA : HeapAlloc}.

(** The outcome of a power: an exception for a negative exponent *)
Definition pow_outcome (x n : Z) (o : bigint_outcome) (held : Z) : Prop :=
  if n <? 0 then o = BI_ERROR ECMA_ERR_NEGATIVE_EXPONENT_IS_NOT_ALLOWED_FOR_BIGINTS /\ held = 0
  else bigint_result (x ^ n) o held.

(** The power of a magnitude of at least two by an exponent of one digit *)
Lemma wp_pow_digit l n : bigint_wf l -> 2 <= n < B32 -> big_uint_value l <> 1 ->
  let base := if ECMA_BIGINT_GET_SIZE l =? sizeof_digit then hd 0 (bigint_digits l) else 0 in
  wp (if base =? 2 then ecma_big_uint_shift_left l (u32 (n - 1)) else ecma_big_uint_pow l n)
     (big_uint_result (big_uint_value l ^ n)).
Proof.
  intros Hl Hn H1. cbv zeta. pose proof Hl as [Wl _].
  destruct (Z.eqb_spec (if ECMA_BIGINT_GET_SIZE l =? 4 then hd 0 (bigint_digits l) else 0) 2) as [E|E].
  - destruct (Z.eqb_spec (ECMA_BIGINT_GET_SIZE l) 4) as [Es|]; [| lia].
    destruct (small_value l Hl ltac:(lia)) as [Ed _]. rewrite Ed in E. cbn [hd] in E.
    rewrite u32_small by (unfold is_u32; lia). rewrite E.
    replace (2 ^ n) with (big_uint_value l * 2 ^ (n - 1)).
    + apply wp_big_uint_shift_left; [assumption | lia].
    + rewrite E, <- Z.pow_succ_r by lia. f_equal. lia.
  - now apply wp_big_uint_pow.
Qed.

Lemma wp_bigint_pow left right : bigint_ok left -> bigint_ok right ->
  wp (ecma_bigint_pow left right) (pow_outcome (bigint_to_Z left) (bigint_to_Z right)).
Proof.
  intros Hl Hr. destruct right as [|r]; cbn [ecma_bigint_pow bigint_to_Z bigint_ok] in *.
  { unfold pow_outcome. cbn [Z.ltb Z.compare]. rewrite Z.pow_0_r. apply (wp_create_from_digit 1 false). lia. }
  pose proof (bigint_pos r Hr) as Pr. pose proof Hr as [Wr _]. rewrite (hd_odd r Wr). unfold pow_outcome.
  destruct (bigint_int_cases r Hr) as [[-> ->] | [-> ->]]; cbn [Z.eqb negb].
  2: { wp_step. destruct (Z.ltb_spec (- big_uint_value r) 0); [easy | lia]. }
  set (n := big_uint_value r) in *. destruct (Z.ltb_spec n 0); [lia |].
  destruct left as [|l]; cbn [bigint_to_Z bigint_ok] in *; [wp_step; now rewrite Z.pow_0_l by lia |].
  pose proof (bigint_pos l Hl) as Pl. pose proof Hl as [Wl _]. pose proof (signed_power l n Hl ltac:(lia)) as Hpow.
  assert (Hone : ((if ECMA_BIGINT_GET_SIZE l =? 4 then hd 0 (bigint_digits l) else 0) =? 1) = (big_uint_value l =? 1)).
  { destruct (Z.eqb_spec (ECMA_BIGINT_GET_SIZE l) 4) as [Es|Es].
    - destruct (small_value l Hl ltac:(lia)) as [-> _]. reflexivity.
    - symmetry. apply Z.eqb_neq. pose proof (zlength_pos _ (wf_nonempty _ Wl)).
      pose proof (large_value l Hl). rewrite (wf_size _ Wl) in *. unfold digits_size in *. lia. }
  rewrite Hone. destruct (Z.eqb_spec (big_uint_value l) 1) as [E1|E1].
  { rewrite E1, Z.pow_1_l in Hpow by lia. rewrite Hpow.
    destruct (bigint_int_cases l Hl) as [[Sl Il] | [Sl Il]]; rewrite Sl in *; cbn [Z.eqb negb orb andb].
    - wp_step. rewrite <- E1, <- Il. now apply ref_result.
    - destruct (Z.odd n); [wp_step; rewrite <- E1, <- Il; now apply ref_result |].
      apply (wp_create_from_digit 1 false). lia. }
  destruct (Z.ltb_spec 4 (ECMA_BIGINT_GET_SIZE r)) as [Hbig|Hsmall].
  { wp_step. split; [reflexivity |]. intros _. pose proof (large_value r Hr Hbig) as Hn. fold n in Hn. unfold int_too_large.
    rewrite Z.abs_pow. replace (Z.abs (bigint_int l)) with (big_uint_value l) by (sign_cases Hl; lia).
    eapply too_large_le; [| apply (too_large_scale 1 n); lia]. rewrite Z.mul_1_l. apply Z.pow_le_mono_l. lia. }
  destruct (small_value r Hr Hsmall) as [-> Hn]. fold n in Hn |- *. cbn [hd].
  destruct (Z.eqb_spec n 1) as [->|Hn1]; [wp_step; rewrite Z.pow_1_r; now apply ref_result |].
  wp_step. eapply wp_mono; [apply (wp_pow_digit l n Hl ltac:(lia) E1) |]. intros res held Hres. wp_step.
  rewrite Z.add_0_r, Hpow.
  apply (make_value_result (big_uint_value l ^ n)); [apply Z.pow_pos_nonneg; lia | | assumption |];
    unfold ECMA_BIGINT_SIGN; destruct (_ && _); cbn; lia.
Qed.

(** ** Bitwise operators *)

Lemma wp_bigint_bitwise op dl dr inc l r : is_operation op -> bigint_wf l -> bigint_wf r ->
  dl || dr = true \/ (inc = false /\ op <> 3) ->
  wp (ecma_bigint_bitwise_op (bitwise_options op dl dr inc) l r)
     (bigint_result (let m := bitwise_value op (decreased l dl) (decreased r dr) in if inc then - (m + 1) else m)).
Proof.
  intros Hop Hl Hr Ho. unfold ecma_bigint_bitwise_op. pose proof Hl as [Wl _]. pose proof Hr as [Wr _].
  assert (Hd : forall v (b : bool), bigint_wf v -> 0 <= decreased v b).
  { intros v b H. pose proof (bigint_pos v H). unfold decreased. destruct b; cbn; lia. }
  destruct (options_decode op dl dr inc Hop) as (_ & _ & _ & _ & ->).
  wp_step. eapply wp_mono; [apply (wp_big_uint_bitwise_op op dl dr inc l r Hop Wl Wr Ho) |].
  intros res held Hres. wp_step. rewrite Z.add_0_r.
  eapply make_value_or_zero_result; [| | eassumption |]; cbv zeta.
  - assert (0 <= bitwise_value op (decreased l dl) (decreased r dr)); [| destruct inc; cbn; lia].
    pose proof (Hd l dl Hl). pose proof (Hd r dr Hr). destruct Hop as [->|[->|[->| ->]]]; cbn -[decreased].
    + apply Z.land_nonneg; lia.
    + apply Z.lor_nonneg; lia.
    + apply Z.lxor_nonneg; lia.
    + apply Z.ldiff_nonneg; lia.
  - unfold ECMA_BIGINT_SIGN. destruct inc; lia.
  - unfold ECMA_BIGINT_SIGN. destruct inc; cbn; lia.
Qed.

(** A negative number in two's complement is the complement of its magnitude minus one. *)
Lemma opp_lnot x : - x = Z.lnot (x - 1).
Proof. unfold Z.lnot. lia. Qed.

Lemma opp_succ_lnot x : - (x + 1) = Z.lnot x.
Proof. unfold Z.lnot. lia. Qed.

Ltac bitwise_by options :=
  match goal with
  | |- wp (ecma_bigint_bitwise_op ?o ?l ?r) _ => change o with options
  end; eapply wp_mono; [apply wp_bigint_bitwise; try assumption; unfold is_operation; try lia; now left || (right; split; [reflexivity | lia]) |];
  cbv zeta; unfold decreased; cbn [Z.b2z]; intros ? ?;
  match goal with |- bigint_result ?a ?o ?h -> bigint_result ?b ?o ?h => replace b with a; [easy |] end;
  rewrite ?Z.sub_0_r, ?opp_succ_lnot, ?opp_lnot; unfold bitwise_value;
  cbn [Z.eqb Pos.eqb ECMA_BIG_UINT_BITWISE_AND ECMA_BIG_UINT_BITWISE_OR ECMA_BIG_UINT_BITWISE_XOR];
  apply Z.bits_inj'; intros i Hi;
  rewrite ?Z.lnot_spec, ?Z.land_spec, ?Z.lor_spec, ?Z.lxor_spec, ?Z.ldiff_spec, ?Z.lnot_spec, ?Z.land_spec, ?Z.lor_spec,
    ?Z.lxor_spec, ?Z.ldiff_spec by lia;
  repeat match goal with |- context [Z.testbit ?x i] => destruct (Z.testbit x i) end; reflexivity.

Lemma wp_bigint_and left right : bigint_ok left -> bigint_ok right ->
  wp (ecma_bigint_and left right) (bigint_result (Z.land (bigint_to_Z left) (bigint_to_Z right))).
Proof.
  intros Hl Hr. destruct left as [|l]; cbn [ecma_bigint_and bigint_to_Z bigint_ok] in *; [wp_step; easy |].
  destruct right as [|r]; cbn [bigint_to_Z bigint_ok] in *; [wp_step; now rewrite Z.land_0_r |].
  sign_cases Hl; sign_cases Hr; cbn [Z.eqb].
  - bitwise_by (bitwise_options 0 false false false).
  - bitwise_by (bitwise_options 3 false true false).
  - bitwise_by (bitwise_options 3 false true false).
  - bitwise_by (bitwise_options 1 true true true).
Qed.

Lemma wp_bigint_or left right : bigint_ok left -> bigint_ok right ->
  wp (ecma_bigint_or left right) (bigint_result (Z.lor (bigint_to_Z left) (bigint_to_Z right))).
Proof.
  intros Hl Hr. destruct left as [|l]; cbn [ecma_bigint_or bigint_to_Z] in *; [wp_step; now apply copy_result |].
  destruct right as [|r]; [wp_step; rewrite Z.lor_0_r; now apply copy_result |].
  cbn [bigint_to_Z bigint_ok] in *. sign_cases Hl; sign_cases Hr; cbn [Z.eqb].
  - bitwise_by (bitwise_options 1 false false false).
  - bitwise_by (bitwise_options 3 true false true).
  - bitwise_by (bitwise_options 3 true false true).
  - bitwise_by (bitwise_options 0 true true true).
Qed.

Lemma wp_bigint_xor left right : bigint_ok left -> bigint_ok right ->
  wp (ecma_bigint_xor left right) (bigint_result (Z.lxor (bigint_to_Z left) (bigint_to_Z right))).
Proof.
  intros Hl Hr. destruct left as [|l]; cbn [ecma_bigint_xor bigint_to_Z] in *; [wp_step; now apply copy_result |].
  destruct right as [|r]; [wp_step; rewrite Z.lxor_0_r; now apply copy_result |].
  cbn [bigint_to_Z bigint_ok] in *. sign_cases Hl; sign_cases Hr; cbn [Z.eqb].
  - bitwise_by (bitwise_options 2 false false false).
  - bitwise_by (bitwise_options 2 false true true).
  - bitwise_by (bitwise_options 2 true false true).
  - bitwise_by (bitwise_options 2 true true false).
Qed.
End Operators3.

(** ** Order and equality *)

Lemma digits_eqb_spec a b : digits_eqb a b = true <-> a = b.
Proof.
  unfold digits_eqb. rewrite andb_true_iff, Nat.eqb_eq. revert b.
  induction a as [|x a IH]; intros [|y b]; cbn [length combine forallb]; split; intros H; try easy.
  - destruct H as [L H]. apply andb_prop in H as [E H]. apply Z.eqb_eq in E. cbn in E. f_equal; [assumption |].
    apply IH. split; [lia | assumption].
  - injection H as -> H. apply IH in H as [L H]. split; [lia |]. cbn. now rewrite Z.eqb_refl.
Qed.

Lemma bigint_equal left right : bigint_ok left -> bigint_ok right ->
  ecma_bigint_is_equal_to_bigint left right = (bigint_to_Z left =? bigint_to_Z right).
Proof.
  intros Hl Hr. destruct left as [|l], right as [|r]; cbn [ecma_bigint_is_equal_to_bigint bigint_to_Z bigint_ok] in *; try reflexivity.
  - pose proof (bigint_pos r Hr). symmetry. apply Z.eqb_neq. sign_cases Hr; lia.
  - pose proof (bigint_pos l Hl). symmetry. apply Z.eqb_neq. sign_cases Hl; lia.
  - destruct (sign_of_wf l Hl) as [Sl El], (sign_of_wf r Hr) as [Sr Er]. pose proof Hl as [Wl _]. pose proof Hr as [Wr _].
    pose proof (bigint_pos l Hl). pose proof (bigint_pos r Hr). rewrite (wf_size _ Wl).
    unfold digits_size in *. replace (Z.to_nat (4 * zlength (bigint_digits l) / 4)) with (length (bigint_digits l))
      by (rewrite Z.mul_comm, Z.div_mul; unfold zlength; lia).
    destruct (Z.eqb_spec (bigint_sign_and_size l) (bigint_sign_and_size r)) as [E|E]; cbn [negb].
    + assert (Hlen : zlength (bigint_digits l) = zlength (bigint_digits r)) by lia.
      assert (Hs : sign_of l = sign_of r) by lia.
      rewrite firstn_all, firstn_all2 by (unfold zlength in Hlen; lia).
      apply eq_true_iff_eq. rewrite digits_eqb_spec, Z.eqb_eq. unfold bigint_int. rewrite Hs. unfold big_uint_value. split.
      * now intros ->.
      * intros Hv. apply digits_value_inj; try apply Wl; try apply Wr; [assumption |].
        destruct (sign_of r =? 0); lia.
    + symmetry. apply Z.eqb_neq. intros Hv. apply E. rewrite El, Er.
      assert (Hs : sign_of l = sign_of r) by (sign_cases Hl; sign_cases Hr; lia).
      assert (Hval : big_uint_value l = big_uint_value r) by (sign_cases Hl; sign_cases Hr; lia).
      pose proof (wf_length_le l r Wl Wr ltac:(lia)). pose proof (wf_length_le r l Wr Wl ltac:(lia)). lia.
Qed.

Lemma bigint_compare left right : bigint_ok left -> bigint_ok right ->
  ecma_bigint_compare_to_bigint left right =
    match bigint_to_Z left ?= bigint_to_Z right with Lt => -1 | Eq => 0 | Gt => 1 end.
Proof.
  intros Hl Hr. destruct left as [|l], right as [|r]; cbn [ecma_bigint_compare_to_bigint bigint_to_Z bigint_ok] in *; try reflexivity.
  - pose proof (bigint_pos r Hr). sign_cases Hr; [rewrite (proj2 (Z.compare_lt_iff _ _)) | rewrite (proj2 (Z.compare_gt_iff _ _))]; reflexivity || lia.
  - pose proof (bigint_pos l Hl). sign_cases Hl; [rewrite (proj2 (Z.compare_gt_iff _ _)) | rewrite (proj2 (Z.compare_lt_iff _ _))]; reflexivity || lia.
  - pose proof Hl as [Wl _]. pose proof Hr as [Wr _]. rewrite (big_uint_compare_value l r Wl Wr).
    pose proof (bigint_pos l Hl). pose proof (bigint_pos r Hr).
    sign_cases Hl; sign_cases Hr; cbn [Z.lxor Z.eqb negb Pos.lxor Z.of_N].
    + reflexivity.
    + rewrite (proj2 (Z.compare_gt_iff _ _)) by lia. reflexivity.
    + rewrite (proj2 (Z.compare_lt_iff _ _)) by lia. reflexivity.
    + destruct (Z.compare_spec (big_uint_value l) (big_uint_value r)), (Z.compare_spec (- big_uint_value l) (- big_uint_value r)); lia || reflexivity.
Qed.

(** ** Properties *)

(** A BigInt for the witnesses *)
Definition bigint_of (negative : bool) (ds : list Z) : bigint_value :=
  BIGINT (mk_primitive 14 (digits_size ds + Z.b2z negative) ds).

Ltac bigint_wf_of := split; [wf_of | eexists; split; [| reflexivity]; cbn; lia].

Section Properties.
Context {HA : HeapAlloc}.

(** ecma_bigint_add_sub delivers the sum or the difference of two BigInts
    for all sign combinations and zero operands; it returns an operand with one
    more reference where that is the result, and otherwise owns one new object. *)
Theorem ecma_bigint_add_sub_correct left right is_add : bigint_ok left -> bigint_ok right ->
  wp (ecma_bigint_add_sub left right is_add)
     (bigint_result (if is_add then bigint_to_Z left + bigint_to_Z right else bigint_to_Z left - bigint_to_Z right)).
Proof. apply wp_bigint_add_sub. Qed.

(** Ecma_bigint_mul delivers the product, including the shortcuts for
    factors 1 and -1. *)
Theorem ecma_bigint_mul_correct left right : bigint_ok left -> bigint_ok right ->
  wp (ecma_bigint_mul left right) (bigint_result (bigint_to_Z left * bigint_to_Z right)).
Proof. apply wp_bigint_mul. Qed.

(** C34: ecma_bigint_div_mod delivers the quotient truncated towards zero, or
    the remainder with the sign of the dividend, whenever the magnitude division
    is exact (its guard is sound on this run, which is decidable; on
    (2^64 + 2) / (2^63 + 1), where it is not, the quotient is one too small and
    the remainder is the divisor). *)
Theorem ecma_bigint_div_mod_correct left right is_mod :
  bigint_ok left -> bigint_ok right -> bigint_to_Z right <> 0 -> bigint_div_sound left right ->
  wp (ecma_bigint_div_mod left right is_mod)
     (bigint_result (if is_mod then Z.rem (bigint_to_Z left) (bigint_to_Z right)
                     else Z.quot (bigint_to_Z left) (bigint_to_Z right))).
Proof. apply wp_bigint_div_mod. Qed.

(** Ecma_bigint_shift is the arithmetic shift of two's complement numbers:
    multiplication by a power of two to the left, division rounding down to the
    right (towards minus infinity, also for negative numbers), with the
    direction reversed by a negative count and counts of any size. *)
Theorem ecma_bigint_shift_correct left right is_left : bigint_ok left -> bigint_ok right ->
  wp (ecma_bigint_shift left right is_left)
     (bigint_result (Z.shiftl (bigint_to_Z left) (if is_left then bigint_to_Z right else - bigint_to_Z right))).
Proof. apply wp_bigint_shift. Qed.

(** Powers: ecma_bigint_pow delivers the power with the right sign for every
    non-negative exponent and raises the range error for a negative one. *)
Theorem ecma_bigint_pow_correct left right : bigint_ok left -> bigint_ok right ->
  wp (ecma_bigint_pow left right) (pow_outcome (bigint_to_Z left) (bigint_to_Z right)).
Proof. apply wp_bigint_pow. Qed.

(** ecma_bigint_and, ecma_bigint_or and ecma_bigint_xor compute the bitwise
    operators on the infinite two's complement representation, for operands of
    either sign. *)
Theorem ecma_bigint_bitwise_correct left right : bigint_ok left -> bigint_ok right ->
  wp (ecma_bigint_and left right) (bigint_result (Z.land (bigint_to_Z left) (bigint_to_Z right)))
  /\ wp (ecma_bigint_or left right) (bigint_result (Z.lor (bigint_to_Z left) (bigint_to_Z right)))
  /\ wp (ecma_bigint_xor left right) (bigint_result (Z.lxor (bigint_to_Z left) (bigint_to_Z right))).
Proof.
  intros Hl Hr. splits; [now apply wp_bigint_and | now apply wp_bigint_or | now apply wp_bigint_xor].
Qed.

(** Ecma_bigint_unary computes bitwise not, increment and decrement,
    across the change of sign. *)
Theorem ecma_bigint_unary_correct v type : bigint_ok v ->
  wp (ecma_bigint_unary v type) (bigint_result (unary_value type (bigint_to_Z v))).
Proof. apply wp_bigint_unary. Qed.
End Properties.

(** Order: ecma_bigint_compare_to_bigint and ecma_bigint_is_equal_to_bigint are the
    order and the equality of the integers. *)
Theorem ecma_bigint_order_correct left right : bigint_ok left -> bigint_ok right ->
  ecma_bigint_compare_to_bigint left right =
    match bigint_to_Z left ?= bigint_to_Z right with Lt => -1 | Eq => 0 | Gt => 1 end
  /\ ecma_bigint_is_equal_to_bigint left right = (bigint_to_Z left =? bigint_to_Z right).
Proof. intros Hl Hr. split; [now apply bigint_compare | now apply bigint_equal]. Qed.

Lemma ecma_bigint_add_sub_witness :
  @wp (CounterHeap true) _ (@ecma_bigint_add_sub (CounterHeap true) (bigint_of true [5]) (bigint_of false [0; 1]) false)
    (@bigint_result (CounterHeap true) (-5 - B32)).
Proof. apply (@ecma_bigint_add_sub_correct (CounterHeap true) (bigint_of true [5]) (bigint_of false [0; 1]) false); bigint_wf_of. Defined.

Lemma ecma_bigint_mul_witness :
  @wp (CounterHeap true) _ (@ecma_bigint_mul (CounterHeap true) (bigint_of true [5]) (bigint_of false [7; 1]))
    (@bigint_result (CounterHeap true) (-5 * (7 + B32))).
Proof. apply (@ecma_bigint_mul_correct (CounterHeap true) (bigint_of true [5]) (bigint_of false [7; 1])); bigint_wf_of. Defined.

Lemma ecma_bigint_div_mod_witness :
  @wp (CounterHeap true) _ (@ecma_bigint_div_mod (CounterHeap true) (bigint_of true [10; 20; 30]) (bigint_of false [7; 9]) true)
    (@bigint_result (CounterHeap true) (Z.rem (- (10 + 20 * B32 + 30 * B64)) (7 + 9 * B32))).
Proof.
  apply (@ecma_bigint_div_mod_correct (CounterHeap true) (bigint_of true [10; 20; 30]) (bigint_of false [7; 9]) true);
    [bigint_wf_of | bigint_wf_of | vm_compute; discriminate | reflexivity].
Defined.

Lemma ecma_bigint_shift_witness :
  @wp (CounterHeap true) _ (@ecma_bigint_shift (CounterHeap true) (bigint_of true [5]) (bigint_of false [1]) false)
    (@bigint_result (CounterHeap true) (-3)).
Proof. apply (@ecma_bigint_shift_correct (CounterHeap true) (bigint_of true [5]) (bigint_of false [1]) false); bigint_wf_of. Defined.

Lemma ecma_bigint_pow_witness :
  @wp (CounterHeap true) _ (@ecma_bigint_pow (CounterHeap true) (bigint_of true [3]) (bigint_of false [5]))
    (@pow_outcome (CounterHeap true) (-3) 5).
Proof. apply (@ecma_bigint_pow_correct (CounterHeap true) (bigint_of true [3]) (bigint_of false [5])); bigint_wf_of. Defined.

Lemma ecma_bigint_bitwise_witness :
  @wp (CounterHeap true) _ (@ecma_bigint_and (CounterHeap true) (bigint_of true [6]) (bigint_of false [12])) (@bigint_result (CounterHeap true) 8)
  /\ @wp (CounterHeap true) _ (@ecma_bigint_or (CounterHeap true) (bigint_of true [6]) (bigint_of false [12])) (@bigint_result (CounterHeap true) (-2))
  /\ @wp (CounterHeap true) _ (@ecma_bigint_xor (CounterHeap true) (bigint_of true [6]) (bigint_of false [12])) (@bigint_result (CounterHeap true) (-10)).
Proof. apply (@ecma_bigint_bitwise_correct (CounterHeap true) (bigint_of true [6]) (bigint_of false [12])); bigint_wf_of. Defined.

Lemma ecma_bigint_unary_witness :
  @wp (CounterHeap true) _ (@ecma_bigint_unary (CounterHeap true) (bigint_of true [1]) ECMA_BIGINT_UNARY_BITWISE_NOT)
    (@bigint_result (CounterHeap true) 0).
Proof. apply (@ecma_bigint_unary_correct (CounterHeap true) (bigint_of true [1]) ECMA_BIGINT_UNARY_BITWISE_NOT). bigint_wf_of. Defined.

Lemma ecma_bigint_order_witness :
  ecma_bigint_compare_to_bigint (bigint_of true [6]) (bigint_of false [1]) = -1
  /\ ecma_bigint_is_equal_to_bigint (bigint_of true [6]) (bigint_of false [1]) = false.
Proof. apply (ecma_bigint_order_correct (bigint_of true [6]) (bigint_of false [1])); bigint_wf_of. Defined.
