(* ===== verification/BigIntNumber.v ===== *)
(** * BigInts and numbers: src/jjs-core/ecma/operations/ecma-bigint.c

    The conversions between BigInts and the binary64 numbers of the language
    and the comparisons of one with the other.  A number is its 64-bit pattern,
    taken apart by the functions of ecma-helpers-number.c; the theorems measure
    it in units of 2^-1074, the smallest positive number, so that every finite
    number is an integer count of units. *)
From Stdlib Require Import ZArith List Lia Bool.
From S2P Require Import Prelude HeapIface BigUint BigUintBits BigInt.
Import ListNotations.
#[local] Open Scope Z_scope.
#[local] Open Scope heap_scope.

(** ** ecma-helpers-number.c *)

Definition ECMA_NUMBER_BIASED_EXP_WIDTH : Z := 11.
Definition ECMA_NUMBER_FRACTION_WIDTH : Z := 52.
Definition ECMA_NUMBER_SIGN_BIT : Z := 9223372036854775808.
Definition ECMA_NUMBER_BINARY_INF : Z := 9218868437227405312.

(** The exponent bias, written (1 << (ECMA_NUMBER_BIASED_EXP_WIDTH - 1)) - 1 in the code *)
Definition exponent_bias : Z := Z.shiftl 1 (ECMA_NUMBER_BIASED_EXP_WIDTH - 1) - 1.

Definition ecma_number_sign (binary : Z) : bool := negb (Z.land binary ECMA_NUMBER_SIGN_BIT =? 0).

Definition ecma_number_biased_exp (binary : Z) : Z :=
  u32 (Z.shiftr (Z.land binary (B64 - 1 - ECMA_NUMBER_SIGN_BIT)) ECMA_NUMBER_FRACTION_WIDTH).

Definition ecma_number_fraction (binary : Z) : Z :=
  Z.land binary (Z.shiftl 1 ECMA_NUMBER_FRACTION_WIDTH - 1).

Definition ecma_number_create (sign : bool) (biased_exp fraction : Z) : Z :=
  let binary := u64 (Z.shiftl biased_exp ECMA_NUMBER_FRACTION_WIDTH) in
  let binary := Z.lor binary fraction in
  if sign then Z.lor binary ECMA_NUMBER_SIGN_BIT else binary.

Definition ecma_number_make_infinity (sign : bool) : Z :=
  if sign then Z.lor ECMA_NUMBER_BINARY_INF ECMA_NUMBER_SIGN_BIT else ECMA_NUMBER_BINARY_INF.

(** num != num, as IEEE-754 defines it *)
Definition ecma_number_is_nan (num : Z) : bool :=
  (ecma_number_biased_exp num =? Z.shiftl 1 ECMA_NUMBER_BIASED_EXP_WIDTH - 1)
  && (0 <? ecma_number_fraction num).

(** num == 0 *)
Definition ecma_number_is_zero (num : Z) : bool :=
  Z.land num (B64 - 1 - ECMA_NUMBER_SIGN_BIT) =? 0.

Definition ecma_number_is_infinity (num : Z) : bool :=
  Z.land num (B64 - 1 - ECMA_NUMBER_SIGN_BIT) =? ECMA_NUMBER_BINARY_INF.

(** The operators num > 0 and num < 0 *)
Definition number_gt_zero (num : Z) : bool :=
  negb (ecma_number_is_nan num) && negb (ecma_number_is_zero num) && negb (ecma_number_sign num).

Definition number_lt_zero (num : Z) : bool :=
  negb (ecma_number_is_nan num) && negb (ecma_number_is_zero num) && ecma_number_sign num.

(** ** From numbers *)

Definition ECMA_BIGINT_NUMBER_TO_DIGITS_GET_ZERO_SIZE (value : Z) : Z := Z.land value 65535 * sizeof_digit.
Definition ECMA_BIGINT_NUMBER_TO_DIGITS_GET_DIGITS (value : Z) : Z := Z.shiftr value 20.
Definition ECMA_BIGINT_NUMBER_TO_DIGITS_GET_DIGITS_SIZE (value : Z) : Z :=
  ECMA_BIGINT_NUMBER_TO_DIGITS_GET_DIGITS value * sizeof_digit.
Definition ECMA_BIGINT_NUMBER_TO_DIGITS_SET_DIGITS (value : Z) : Z := u32 (Z.shiftl value 20).
Definition ECMA_BIGINT_NUMBER_TO_DIGITS_HAS_FRACTION : Z := 65536.

(** The packed result and the digits written through digits_p *)
Definition ecma_bigint_number_to_digits (number : Z) : Z * list Z :=
  if ecma_number_is_zero number then (ECMA_BIGINT_NUMBER_TO_DIGITS_SET_DIGITS 0, [])
  else
    let biased_exp := ecma_number_biased_exp number in
    let fraction := ecma_number_fraction number in
    if biased_exp <? exponent_bias then
      (Z.lor (ECMA_BIGINT_NUMBER_TO_DIGITS_SET_DIGITS 0) ECMA_BIGINT_NUMBER_TO_DIGITS_HAS_FRACTION, [])
    else
      let biased_exp := biased_exp - exponent_bias in
      let fraction := Z.lor fraction (Z.shiftl 1 ECMA_NUMBER_FRACTION_WIDTH) in
      if biased_exp <=? ECMA_NUMBER_FRACTION_WIDTH then
        let has_fraction :=
          if (biased_exp <? ECMA_NUMBER_FRACTION_WIDTH)
             && negb (u64 (Z.shiftl fraction (biased_exp + (64 - ECMA_NUMBER_FRACTION_WIDTH))) =? 0)
          then ECMA_BIGINT_NUMBER_TO_DIGITS_HAS_FRACTION else 0 in
        let fraction := Z.shiftr fraction (ECMA_NUMBER_FRACTION_WIDTH - biased_exp) in
        let digit0 := u32 fraction in
        let digit1 := u32 (Z.shiftr fraction 32) in
        (Z.lor (ECMA_BIGINT_NUMBER_TO_DIGITS_SET_DIGITS (if digit1 =? 0 then 1 else 2)) has_fraction,
         [digit0; digit1])
      else
        let digit0 := u32 fraction in
        let digit1 := u32 (Z.shiftr fraction 32) in
        let biased_exp := biased_exp - ECMA_NUMBER_FRACTION_WIDTH in
        let shift_left := Z.land biased_exp 31 in
        let biased_exp := Z.shiftr biased_exp ECMA_BIGINT_DIGIT_SHIFT in
        if shift_left =? 0 then
          (Z.lor biased_exp (ECMA_BIGINT_NUMBER_TO_DIGITS_SET_DIGITS 2), [digit0; digit1])
        else
          let shift_right := Z.shiftl 1 ECMA_BIGINT_DIGIT_SHIFT - shift_left in
          let digit2 := Z.shiftr digit1 shift_right in
          let digit1 := Z.lor (u32 (Z.shiftl digit1 shift_left)) (Z.shiftr digit0 shift_right) in
          let digit0 := u32 (Z.shiftl digit0 shift_left) in
          (Z.lor biased_exp (ECMA_BIGINT_NUMBER_TO_DIGITS_SET_DIGITS (if digit2 =? 0 then 2 else 3)),
           [digit0; digit1; digit2]).

Definition has_fraction (result : Z) : bool :=
  negb (Z.land result ECMA_BIGINT_NUMBER_TO_DIGITS_HAS_FRACTION =? 0).

(** A size in bytes as a number of digits *)
Definition in_digits (size : Z) : nat := Z.to_nat (size / sizeof_digit).

Definition ecma_bigint_number_to_bigint {HA : HeapAlloc} (number : Z) : M bigint_outcome :=
  if ecma_number_is_nan number || ecma_number_is_infinity number
  then ret (BI_ERROR ECMA_ERR_INFINITY_OR_NAN_CANNOT_BE_CONVERTED_TO_BIGINT)
  else
    let (result, digits) := ecma_bigint_number_to_digits number in
    if has_fraction result then ret (BI_ERROR ECMA_ERR_ONLY_INTEGER_NUMBERS_CAN_BE_CONVERTED_TO_BIGINT)
    else
      let digits_size := ECMA_BIGINT_NUMBER_TO_DIGITS_GET_DIGITS_SIZE result in
      if digits_size =? 0 then ret BI_ZERO
      else
        let zero_size := ECMA_BIGINT_NUMBER_TO_DIGITS_GET_ZERO_SIZE result in
        result_p <- ecma_bigint_create (digits_size + zero_size);;
        ret (match result_p with
             | None => BI_ERROR ECMA_ERR_ALLOCATE_BIGINT_VALUE
             | Some r =>
                 let r := set_digits r (repeat 0 (in_digits zero_size) ++ firstn (in_digits digits_size) digits) in
                 BI_NEW (if number_lt_zero number then or_sign r ECMA_BIGINT_SIGN else r)
             end).

(** ** Comparison with numbers *)

Definition ecma_bigint_is_equal_to_number (left_value : bigint_value) (right_value : Z) : bool :=
  if ecma_number_is_nan right_value || ecma_number_is_infinity right_value then false
  else
    match left_value with
    | ECMA_BIGINT_ZERO => ecma_number_is_zero right_value
    | BIGINT left_value_p =>
        (* Sign must be the same. *)
        if (if negb (sign_of left_value_p =? 0) then number_gt_zero right_value else number_lt_zero right_value)
        then false
        else
          let (result, digits) := ecma_bigint_number_to_digits right_value in
          if has_fraction result then false
          else
            let digits_size := ECMA_BIGINT_NUMBER_TO_DIGITS_GET_DIGITS_SIZE result in
            let zero_size := ECMA_BIGINT_NUMBER_TO_DIGITS_GET_ZERO_SIZE result in
            if negb (ECMA_BIGINT_GET_SIZE left_value_p =? digits_size + zero_size) then false
            else
              let left_p := bigint_digits left_value_p in
              let left_end_p := skipn (in_digits zero_size) left_p in
              (* Check value bits first. *)
              if negb (digits_eqb (firstn (in_digits digits_size) left_end_p) (firstn (in_digits digits_size) digits))
              then false
              else forallb (fun d => d =? 0) (firstn (in_digits zero_size) left_p)
    end.

(** The first loop of ecma_bigint_compare_to_number, from the most significant
    digit down; [None] when all compared digits are the same *)
Fixpoint compare_value_digits (rev_left rev_digits : list Z) (left_sign : Z) : option Z :=
  match rev_left, rev_digits with
  | l :: rev_left', r :: rev_digits' =>
      if negb (l =? r) then Some (if r <? l then left_sign else - left_sign)
      else compare_value_digits rev_left' rev_digits' left_sign
  | _, _ => None
  end.

Definition ecma_bigint_compare_to_number (left_value : bigint_value) (right_value : Z) : Z :=
  let right_invert_sign := ECMA_BIGINT_TO_SIGN (Z.b2z (number_gt_zero right_value)) in
  match left_value with
  | ECMA_BIGINT_ZERO => if ecma_number_is_zero right_value then 0 else right_invert_sign
  | BIGINT left_value_p =>
      let left_sign := ECMA_BIGINT_TO_SIGN (sign_of left_value_p) in
      if ecma_number_is_zero right_value || (left_sign =? right_invert_sign) then left_sign
      else if ecma_number_is_infinity right_value then right_invert_sign
      else
        let (result, digits) := ecma_bigint_number_to_digits right_value in
        let digits_size := ECMA_BIGINT_NUMBER_TO_DIGITS_GET_DIGITS_SIZE result in
        if digits_size =? 0 then left_sign
        else
          let left_size := ECMA_BIGINT_GET_SIZE left_value_p in
          let right_size := digits_size + ECMA_BIGINT_NUMBER_TO_DIGITS_GET_ZERO_SIZE result in
          if negb (left_size =? right_size) then (if right_size <? left_size then left_sign else - left_sign)
          else
            let n := in_digits digits_size in
            let rev_left := rev (bigint_digits left_value_p) in
            match compare_value_digits (firstn n rev_left) (rev (firstn n digits)) left_sign with
            | Some r => r
            | None =>
                if negb (forallb (fun d => d =? 0) (skipn n rev_left)) then left_sign
                else if has_fraction result then - left_sign else 0
            end
  end.

(** ** To numbers *)

Definition ECMA_INTEGER_NUMBER_MAX : Z := 134217727.
Definition ECMA_INTEGER_NUMBER_MIN : Z := -134217728.

(** The result of ecma_bigint_to_number: an integer value, or the number passed
    to ecma_make_number_value *)
Inductive number_outcome :=
| NUM_INTEGER (value : Z)
| NUM_NUMBER (binary : Z).

(** digits_p[-k], counting from the most significant digit *)
Definition top_digit (ds : list Z) (k : nat) : Z := nth (k - 1) (rev ds) 0.

(** The 64 bits that follow the leading one bit, and shift_left *)
Definition leading_fraction (ds : list Z) : Z * Z :=
  let size := digits_size ds in
  if top_digit ds 1 =? 1 then
    let fraction := u64 (Z.shiftl (top_digit ds 2) 32) in
    (if 3 * sizeof_digit <=? size then Z.lor fraction (top_digit ds 3) else fraction, 32)
  else
    let shift_left := u32 (ecma_big_uint_count_leading_zero (top_digit ds 1) + 1) in
    let fraction := u64 (Z.shiftl (top_digit ds 1) (32 + shift_left)) in
    let fraction :=
      if 2 * sizeof_digit <=? size then Z.lor fraction (u64 (Z.shiftl (top_digit ds 2) shift_left)) else fraction in
    let fraction :=
      if 3 * sizeof_digit <=? size then Z.lor fraction (Z.shiftr (top_digit ds 3) (32 - shift_left)) else fraction in
    (fraction, shift_left).

Definition rounding_bit : Z := Z.shiftl 1 (64 - ECMA_NUMBER_FRACTION_WIDTH - 1).

(** Whether the result is rounded away from zero *)
Definition to_number_round_up (ds : list Z) (fraction shift_left : Z) : bool :=
  if Z.land fraction rounding_bit =? 0 then false
  else if Z.land fraction (Z.shiftl rounding_bit 2 - 1) =? rounding_bit then
    if (3 * sizeof_digit <=? digits_size ds)
       && ((shift_left =? 32)
           || (Z.land (top_digit ds 3) (u32 (Z.shiftl 1 shift_left - 1)) =? 0))
    then existsb (fun d => negb (d =? 0)) (skipn 3 (rev ds))
    else false
  else true.

Definition ecma_bigint_to_number (value : bigint_value) : number_outcome :=
  match value with
  | ECMA_BIGINT_ZERO => NUM_INTEGER 0
  | BIGINT value_p =>
      let size := ECMA_BIGINT_GET_SIZE value_p in
      let ds := firstn (in_digits size) (bigint_digits value_p) in
      let is_small :=
        (size =? sizeof_digit)
        && (if sign_of value_p =? 0 then top_digit ds 1 <=? ECMA_INTEGER_NUMBER_MAX
            else top_digit ds 1 <=? - ECMA_INTEGER_NUMBER_MIN) in
      if is_small then NUM_INTEGER (if sign_of value_p =? 0 then top_digit ds 1 else - top_digit ds 1)
      else
        let (fraction, shift_left) := leading_fraction ds in
        let biased_exp := u32 (exponent_bias + (size * 8 - shift_left)) in
        let round_up := to_number_round_up ds fraction shift_left in
        let fraction' :=
          Z.shiftr (if round_up then u64 (fraction + rounding_bit) else fraction) (64 - ECMA_NUMBER_FRACTION_WIDTH) in
        let biased_exp := if round_up && (fraction' =? 0) then u32 (biased_exp + 1) else biased_exp in
        let sign := negb (sign_of value_p =? 0) in
        NUM_NUMBER (if biased_exp <? Z.shiftl 1 ECMA_NUMBER_BIASED_EXP_WIDTH - 1
                    then ecma_number_create sign biased_exp fraction'
                    else ecma_number_make_infinity sign)
  end.

(** ** What a number means *)

(** 2^-1074, the unit the finite numbers are counted in, as the number of units in 1 *)
Definition number_unit : Z := 2 ^ 1074.

(** The magnitude of a finite number in units: subnormal and normal numbers *)
Definition number_magnitude (number : Z) : Z :=
  let biased_exp := ecma_number_biased_exp number in
  if biased_exp =? 0 then ecma_number_fraction number
  else (2 ^ 52 + ecma_number_fraction number) * 2 ^ (biased_exp - 1).

(** The value of a finite number in units *)
Definition number_scaled (number : Z) : Z :=
  if ecma_number_sign number then - number_magnitude number else number_magnitude number.

Definition number_finite (number : Z) : bool := ecma_number_biased_exp number <? 2047.

(** ** The fields of a number *)

Lemma number_fields number : is_u64 number ->
  ecma_number_biased_exp number = (number mod 2 ^ 63) / 2 ^ 52
  /\ ecma_number_fraction number = number mod 2 ^ 52
  /\ 0 <= ecma_number_biased_exp number < 2048 /\ 0 <= ecma_number_fraction number < 2 ^ 52
  /\ Z.land number (B64 - 1 - ECMA_NUMBER_SIGN_BIT)
     = ecma_number_biased_exp number * 2 ^ 52 + ecma_number_fraction number.
Proof.
  intros Hn. unfold ecma_number_biased_exp, ecma_number_fraction, ECMA_NUMBER_FRACTION_WIDTH, ECMA_NUMBER_SIGN_BIT.
  rewrite (land_ones' number 63) by (reflexivity || lia). rewrite (land_ones' number 52) by (reflexivity || lia).
  rewrite Z.shiftr_div_pow2 by lia.
  assert (H63 : 0 <= number mod 2 ^ 63 < 2 ^ 63) by (apply Z.mod_pos_bound; lia).
  assert (Hb : 0 <= number mod 2 ^ 63 / 2 ^ 52 < 2048).
  { change (2 ^ 63) with (2048 * 2 ^ 52) in *. split; [apply Z.div_pos; lia | apply Z.div_lt_upper_bound; lia]. }
  rewrite u32_small by (unfold is_u32; lia).
  pose proof (Z.mod_pos_bound number (2 ^ 52) ltac:(lia)).
  splits; try lia. rewrite (Z.div_mod (number mod 2 ^ 63) (2 ^ 52)) at 1 by lia.
  rewrite Z.mod_mod_divide by (exists (2 ^ 11); reflexivity). lia.
Qed.

Lemma number_tests number : is_u64 number ->
  (ecma_number_is_nan number || ecma_number_is_infinity number = negb (number_finite number))
  /\ (ecma_number_is_zero number = (number_magnitude number =? 0)).
Proof.
  intros Hn. destruct (number_fields number Hn) as (_ & _ & He & Hf & Hl).
  unfold ecma_number_is_nan, ecma_number_is_infinity, ecma_number_is_zero, number_finite, number_magnitude.
  rewrite Hl. change (Z.shiftl 1 ECMA_NUMBER_BIASED_EXP_WIDTH - 1) with 2047.
  change ECMA_NUMBER_BINARY_INF with (2047 * 2 ^ 52).
  set (e := ecma_number_biased_exp number) in *. set (f := ecma_number_fraction number) in *. split.
  - destruct (Z.eqb_spec e 2047), (Z.ltb_spec 0 f), (Z.eqb_spec (e * 2 ^ 52 + f) (2047 * 2 ^ 52)), (Z.ltb_spec e 2047);
      cbn; lia.
  - destruct (Z.eqb_spec e 0) as [->|].
    + f_equal.
    + pose proof (Z.pow_pos_nonneg 2 (e - 1) ltac:(lia) ltac:(lia)).
      destruct (Z.eqb_spec (e * 2 ^ 52 + f) 0), (Z.eqb_spec ((2 ^ 52 + f) * 2 ^ (e - 1)) 0); nia.
Qed.

(** ** The digits of a number *)

Lemma unit_split : number_unit = 2 ^ 52 * 2 ^ 1022.
Proof. unfold number_unit. now rewrite <- Z.pow_add_r by lia. Qed.

#[local] Opaque number_unit.

Lemma pow_1022_pos : 0 < 2 ^ 1022.
Proof. apply Z.pow_pos_nonneg; lia. Qed.

(** A number below one *)
Lemma number_below_one number : is_u64 number -> ecma_number_biased_exp number < 1023 ->
  0 <= number_magnitude number < number_unit.
Proof.
  intros Hn He. destruct (number_fields number Hn) as (_ & _ & Hr & Hf & _). unfold number_magnitude.
  pose proof pow_1022_pos. rewrite unit_split. destruct (Z.eqb_spec (ecma_number_biased_exp number) 0).
  - assert (1 <= 2 ^ 1022) by lia. nia.
  - assert (Hp : 2 ^ (ecma_number_biased_exp number - 1) <= 2 ^ 1021) by (apply Z.pow_le_mono_r; lia).
    assert (0 < 2 ^ (ecma_number_biased_exp number - 1)) by (apply Z.pow_pos_nonneg; lia).
    assert (E : 2 ^ 1022 = 2 * 2 ^ 1021) by (rewrite <- Z.pow_succ_r by lia; reflexivity).
    rewrite E in *. set (p := 2 ^ 1021) in *. clearbody p. nia.
Qed.

(** A number of at least one: its integer part and the rest *)
Lemma number_from_one number : is_u64 number -> 1023 <= ecma_number_biased_exp number ->
  let m := (2 ^ 52 + ecma_number_fraction number) * 2 ^ (ecma_number_biased_exp number - 1023) in
  number_magnitude number / number_unit = m / 2 ^ 52
  /\ (number_magnitude number mod number_unit = 0 <-> m mod 2 ^ 52 = 0).
Proof.
  intros Hn He m. unfold number_magnitude. pose proof pow_1022_pos. rewrite unit_split.
  destruct (Z.eqb_spec (ecma_number_biased_exp number) 0); [lia |].
  replace (ecma_number_biased_exp number - 1) with (ecma_number_biased_exp number - 1023 + 1022) by lia.
  rewrite Z.pow_add_r, Z.mul_assoc by lia. fold m. rewrite Z.div_mul_cancel_r, Z.mul_mod_distr_r by lia.
  split; [reflexivity |]. split; [intros E | intros ->; lia].
  apply Z.mul_eq_0_l in E; lia.
Qed.

(** What the packed result of ecma_bigint_number_to_digits says *)
Lemma packed_fields n z f : 0 <= n <= 3 -> 0 <= z < 65536 -> f = 0 \/ f = 65536 ->
  let r := Z.lor (n * 2 ^ 20) (z + f) in
  ECMA_BIGINT_NUMBER_TO_DIGITS_GET_DIGITS_SIZE r = 4 * n
  /\ ECMA_BIGINT_NUMBER_TO_DIGITS_GET_ZERO_SIZE r = 4 * z
  /\ has_fraction r = negb (f =? 0).
Proof.
  intros Hn Hz Hf r. unfold r. rewrite lor_mul_low by lia.
  unfold ECMA_BIGINT_NUMBER_TO_DIGITS_GET_DIGITS_SIZE, ECMA_BIGINT_NUMBER_TO_DIGITS_GET_DIGITS, has_fraction,
    ECMA_BIGINT_NUMBER_TO_DIGITS_GET_ZERO_SIZE, ECMA_BIGINT_NUMBER_TO_DIGITS_HAS_FRACTION.
  rewrite Z.shiftr_div_pow2, (land_ones' _ 16) by (reflexivity || lia). change (2 ^ 20) with 1048576. change (2 ^ 16) with 65536.
  split; [destruct Hf as [-> | ->]; Z.div_mod_to_equations; lia |].
  split; [destruct Hf as [-> | ->]; Z.div_mod_to_equations; lia |].
  f_equal. assert (E : Z.land (n * 1048576 + (z + f)) 65536 = f).
  { apply Z.bits_inj'. intros i Hi. rewrite Z.land_spec. change 65536 with (2 ^ 16) at 1. rewrite Z.pow2_bits_eqb by lia.
    destruct (Z.eqb_spec 16 i) as [<-|].
    - rewrite andb_true_r, Z.testbit_odd, Z.shiftr_div_pow2 by lia.
      replace ((n * 1048576 + (z + f)) / 2 ^ 16) with (n * 16 + f / 65536)
        by (change (2 ^ 16) with 65536; destruct Hf as [-> | ->]; Z.div_mod_to_equations; lia).
      rewrite Z.odd_add, Z.odd_mul, andb_false_r. now destruct Hf as [-> | ->].
    - rewrite andb_false_r. destruct Hf as [-> | ->]; [now rewrite Z.bits_0 |].
      change 65536 with (2 ^ 16). now rewrite Z.pow2_bits_false by lia. }
  now rewrite E.
Qed.

(** The digits written, [n] of them above [z] zero digits, for the integer [t] *)
Record digits_of (t n z : Z) (ds : list Z) : Prop := {
  digits_of_length : zlength (firstn (Z.to_nat n) ds) = n;
  digits_of_ok : digits_ok (firstn (Z.to_nat n) ds);
  digits_of_last : n = 0 \/ last (firstn (Z.to_nat n) ds) 0 <> 0;
  digits_of_bounds : 0 <= n <= 3 /\ 0 <= z < 64 /\ (n = 0 -> z = 0);
  digits_of_value : digits_value (firstn (Z.to_nat n) ds) * B32 ^ z = t
}.

Lemma digits_of_none ds : digits_of 0 0 0 ds.
Proof. split; cbn; auto; try lia; constructor. Qed.

(** Evaluate [firstn] at the digit counts that occur *)
Ltac first_digits :=
  change (Z.to_nat 1) with 1%nat; change (Z.to_nat 2) with 2%nat; change (Z.to_nat 3) with 3%nat; cbn [firstn].

Lemma digits_of_two F : 0 < F < B64 ->
  digits_of F (if u32 (Z.shiftr F 32) =? 0 then 1 else 2) 0 [u32 F; u32 (Z.shiftr F 32)].
Proof.
  intros HF. rewrite Z.shiftr_div_pow2 by lia. change (2 ^ 32) with B32.
  assert (Hd1 : u32 (F / B32) = F / B32) by (apply u32_small; zmod). rewrite Hd1.
  assert (H0 : is_u32 (u32 F)) by apply u32_range. assert (H1 : is_u32 (F / B32)) by zmod.
  destruct (Z.eqb_spec (F / B32) 0) as [E|E]; split; first_digits;
    try reflexivity; try lia; try (repeat (apply Forall_cons; [assumption |]); exact (Forall_nil _)); cbn [last digits_value].
  - right. unfold u32. pose proof (Z.div_mod F B32 ltac:(lia)). lia.
  - rewrite Z.pow_0_r. unfold u32. pose proof (Z.div_mod F B32 ltac:(lia)). lia.
  - now right.
  - rewrite Z.pow_0_r. unfold u32. pose proof (Z.div_mod F B32 ltac:(lia)). lia.
Qed.

Lemma digits_of_three F s z : 2 ^ 32 <= F < 2 ^ 53 -> 0 < s < 32 -> 0 <= z < 64 ->
  let digit0 := u32 F in
  let digit1 := u32 (Z.shiftr F 32) in
  let digit2 := Z.shiftr digit1 (32 - s) in
  digits_of (F * 2 ^ s * B32 ^ z) (if digit2 =? 0 then 2 else 3) z
    [u32 (Z.shiftl digit0 s); Z.lor (u32 (Z.shiftl digit1 s)) (Z.shiftr digit0 (32 - s)); digit2].
Proof.
  intros HF Hs Hz digit0 digit1 digit2. unfold digit2, digit1, digit0. clear digit2 digit1 digit0.
  rewrite Z.shiftr_div_pow2 with (a := F) by lia. change (2 ^ 32) with B32 in *.
  set (a := u32 F). assert (Ha : is_u32 a) by apply u32_range.
  assert (Hb : u32 (F / B32) = F / B32) by (apply u32_small; zmod). rewrite Hb. set (b := F / B32) in *.
  assert (EF : F = a + B32 * b) by (unfold a, b, u32; pose proof (Z.div_mod F B32 ltac:(lia)); lia).
  assert (Hb' : 1 <= b < 2 ^ 21) by (unfold b; change (2 ^ 53) with (B32 * 2 ^ 21) in HF; split;
    [apply Z.div_le_lower_bound; lia | apply Z.div_lt_upper_bound; lia]).
  assert (Ep : B32 = 2 ^ s * 2 ^ (32 - s)) by (rewrite <- Z.pow_add_r by lia; replace (s + (32 - s)) with 32 by lia; reflexivity).
  assert (Hps : 0 < 2 ^ s) by (apply Z.pow_pos_nonneg; lia). assert (Hpt : 0 < 2 ^ (32 - s)) by (apply Z.pow_pos_nonneg; lia).
  assert (Shift : forall x, is_u32 x -> u32 (Z.shiftl x s) = x mod 2 ^ (32 - s) * 2 ^ s /\ Z.shiftr x (32 - s) = x / 2 ^ (32 - s)
     /\ x * 2 ^ s = u32 (Z.shiftl x s) + B32 * Z.shiftr x (32 - s) /\ 0 <= Z.shiftr x (32 - s) < 2 ^ s /\ is_u32 (u32 (Z.shiftl x s))).
  { intros x Hx. rewrite Z.shiftl_mul_pow2, Z.shiftr_div_pow2 by lia.
    assert (E1 : u32 (x * 2 ^ s) = x mod 2 ^ (32 - s) * 2 ^ s).
    { unfold u32. rewrite Ep, (Z.mul_comm (2 ^ s) (2 ^ (32 - s))). apply Z.mul_mod_distr_r; lia. }
    assert (E2 : is_u32 (u32 (x * 2 ^ s))) by apply u32_range. rewrite E1 in *.
    pose proof (Z.div_mod x (2 ^ (32 - s)) ltac:(lia)). pose proof (Z.mod_pos_bound x (2 ^ (32 - s)) Hpt).
    splits; try reflexivity.
    - rewrite Ep. nia.
    - apply Z.div_pos; unfold is_u32 in Hx; lia.
    - apply Z.div_lt_upper_bound; [lia |]. unfold is_u32 in Hx. lia.
    - assumption. }
  destruct (Shift a Ha) as (Ea & _ & Sa & Ra & Ua). destruct (Shift b ltac:(unfold is_u32; lia)) as (Eb & _ & Sb & Rb & Ub).
  set (a0 := u32 (Z.shiftl a s)) in *. set (a1 := Z.shiftr a (32 - s)) in *.
  set (b0 := u32 (Z.shiftl b s)) in *. set (b1 := Z.shiftr b (32 - s)) in *.
  rewrite Eb, lor_mul_low, <- Eb by lia.
  assert (Hm : is_u32 (b0 + a1)).
  { unfold is_u32 in *. rewrite Eb. pose proof (Z.mod_pos_bound b (2 ^ (32 - s)) Hpt). rewrite Ep. nia. }
  assert (U1 : is_u32 b1). { unfold is_u32. split; [lia |]. apply Z.lt_trans with (2 ^ s); [lia |]. apply (Z.pow_lt_mono_r 2 s 32); lia. }
  assert (Ev : F * 2 ^ s = a0 + B32 * (b0 + a1 + B32 * b1)) by (rewrite EF; lia).
  destruct (Z.eqb_spec b1 0) as [E|E]; split; first_digits;
    try reflexivity; try lia; try (repeat (apply Forall_cons; [assumption |]); exact (Forall_nil _)); cbn [last digits_value].
  - right. rewrite E in *. intros Hz0. assert (b * 2 ^ s = b0) by lia. nia.
  - rewrite Ev, E. lia.
  - now right.
  - rewrite Ev. lia.
Qed.

(** The packed result describes the integer part [t] and whether there is a
    fraction *)
Definition packed_ok (t : Z) (frac : bool) (p : Z * list Z) : Prop :=
  exists n z, ECMA_BIGINT_NUMBER_TO_DIGITS_GET_DIGITS_SIZE (fst p) = 4 * n
    /\ ECMA_BIGINT_NUMBER_TO_DIGITS_GET_ZERO_SIZE (fst p) = 4 * z
    /\ has_fraction (fst p) = frac /\ digits_of t n z (snd p).

Lemma packed_ok_intro t (frac : bool) n z f ds r : digits_of t n z ds -> f = (if frac then 65536 else 0) ->
  r = Z.lor (n * 2 ^ 20) (z + f) -> packed_ok t frac (r, ds).
Proof.
  intros H -> ->. pose proof (digits_of_bounds _ _ _ _ H).
  destruct (packed_fields n z (if frac then 65536 else 0) ltac:(lia) ltac:(lia) ltac:(destruct frac; auto)) as (H1 & H2 & H3).
  exists n, z. cbn [fst snd]. splits; try assumption. rewrite H3. now destruct frac.
Qed.

Lemma set_digits_eq n : 0 <= n <= 3 -> ECMA_BIGINT_NUMBER_TO_DIGITS_SET_DIGITS n = n * 2 ^ 20.
Proof.
  intros H. unfold ECMA_BIGINT_NUMBER_TO_DIGITS_SET_DIGITS. rewrite Z.shiftl_mul_pow2 by lia.
  apply u32_small. unfold is_u32. lia.
Qed.

(** The bits below the binary point, shifted to the top of a word *)
Lemma fraction_bits m k : 0 <= k <= 52 ->
  (m * 2 ^ k) / 2 ^ 52 = Z.shiftr m (52 - k)
  /\ ((m * 2 ^ k) mod 2 ^ 52 = 0 <-> u64 (Z.shiftl m (k + 12)) = 0).
Proof.
  intros Hk. rewrite Z.shiftr_div_pow2, Z.shiftl_mul_pow2 by lia.
  assert (Hp : 0 < 2 ^ k) by (apply Z.pow_pos_nonneg; lia). assert (Hq : 0 < 2 ^ (52 - k)) by (apply Z.pow_pos_nonneg; lia).
  assert (E : 2 ^ 52 = 2 ^ (52 - k) * 2 ^ k) by (rewrite <- Z.pow_add_r by lia; f_equal; lia).
  split; [rewrite E; apply Z.div_mul_cancel_r; lia |]. unfold u64. change B64 with (2 ^ 52 * 2 ^ 12).
  rewrite Z.pow_add_r, Z.mul_assoc, Z.mul_mod_distr_r by lia. lia.
Qed.

Lemma number_to_digits_large number : is_u64 number -> 1023 <= ecma_number_biased_exp number < 2047 ->
  packed_ok (number_magnitude number / number_unit) (negb (number_magnitude number mod number_unit =? 0))
    (ecma_bigint_number_to_digits number).
Proof.
  intros Hn He. destruct (number_fields number Hn) as (_ & _ & _ & Hf & Hl).
  destruct (number_from_one number Hn ltac:(lia)) as [-> Hm]. unfold ecma_bigint_number_to_digits, ecma_number_is_zero.
  rewrite Hl, (proj2 (Z.eqb_neq (ecma_number_biased_exp number * 2 ^ 52 + _) 0)) by lia. change exponent_bias with 1023. rewrite (proj2 (Z.ltb_ge _ 1023)) by lia.
  set (k := ecma_number_biased_exp number - 1023) in *. set (f := ecma_number_fraction number) in *. cbv zeta.
  change (Z.shiftl 1 ECMA_NUMBER_FRACTION_WIDTH) with (1 * 2 ^ 52). rewrite (Z.lor_comm f), (lor_mul_low 1 f 52) by lia.
  rewrite Z.mul_1_l. set (m := 2 ^ 52 + f) in *. unfold ECMA_NUMBER_FRACTION_WIDTH, ECMA_BIGINT_DIGIT_SHIFT.
  destruct (Z.leb_spec k 52) as [Hk|Hk].
  - destruct (fraction_bits m k ltac:(lia)) as [E1 E2]. rewrite E1.
    eapply packed_ok_intro; [apply digits_of_two | | rewrite set_digits_eq by (destruct (_ =? 0); lia); rewrite Z.add_0_l; reflexivity].
    + rewrite Z.shiftr_div_pow2 by lia. assert (0 < 2 ^ (52 - k)) by (apply Z.pow_pos_nonneg; lia).
      assert (2 ^ (52 - k) <= 2 ^ 52) by (apply Z.pow_le_mono_r; lia).
      split; [apply Z.div_str_pos | apply Z.div_lt_upper_bound]; nia.
    + change (64 - 52) with 12. unfold ECMA_BIGINT_NUMBER_TO_DIGITS_HAS_FRACTION.
      destruct (Z.ltb_spec k 52), (Z.eqb_spec (u64 (Z.shiftl m (k + 12))) 0), (Z.eqb_spec (number_magnitude number mod number_unit) 0);
        cbn; try reflexivity; exfalso; try tauto.
      assert (k = 52) as -> by lia. revert n. rewrite <- E2, Z.mod_mul by lia. lia.
  - assert (Hz : number_magnitude number mod number_unit = 0).
    { apply Hm. replace k with (k - 52 + 52) by lia. rewrite Z.pow_add_r, Z.mul_assoc by lia. apply Z.mod_mul. lia. }
    rewrite Hz. cbn [Z.eqb negb].
    assert (Ht : m * 2 ^ k / 2 ^ 52 = m * 2 ^ ((k - 52) mod 32) * B32 ^ ((k - 52) / 32)).
    { replace k with (k - 52 + 52) at 1 by lia. rewrite Z.pow_add_r, Z.mul_assoc, Z.div_mul by lia.
      rewrite <- Z.mul_assoc. f_equal. change B32 with (2 ^ 32). rewrite <- Z.pow_mul_r, <- Z.pow_add_r by zmod.
      f_equal. pose proof (Z.div_mod (k - 52) 32 ltac:(lia)). lia. }
    rewrite Ht. clear Ht. rewrite (land_ones' _ 5) by (reflexivity || lia). rewrite (Z.shiftr_div_pow2 (k - 52)) by lia.
    change (2 ^ 5) with 32. change (Z.shiftl 1 5) with 32.
    assert (Hs : 0 <= (k - 52) mod 32 < 32) by (apply Z.mod_pos_bound; lia).
    assert (Hq : 0 <= (k - 52) / 32 < 64) by zmod.
    set (s := (k - 52) mod 32) in *. set (q := (k - 52) / 32) in *.
    destruct (Z.eqb_spec s 0) as [->|Hs0].
    + eapply (packed_ok_intro _ false 2 q 0); [| reflexivity | rewrite Z.add_0_r, Z.lor_comm; reflexivity].
      pose proof (digits_of_two m ltac:(lia)) as D.
      replace (u32 (Z.shiftr m 32) =? 0) with false in D.
      2: { symmetry. apply Z.eqb_neq. rewrite Z.shiftr_div_pow2 by lia. unfold m. rewrite u32_small by zmod. zmod. }
      destruct D. split; try assumption; try lia.
    + eapply (packed_ok_intro _ false _ q 0); [apply (digits_of_three m s q); lia | reflexivity |].
      rewrite set_digits_eq by (destruct (_ =? 0); lia). rewrite Z.add_0_r. apply Z.lor_comm.
Qed.

Lemma number_to_digits_spec number : is_u64 number -> number_finite number = true ->
  packed_ok (number_magnitude number / number_unit) (negb (number_magnitude number mod number_unit =? 0))
    (ecma_bigint_number_to_digits number).
Proof.
  intros Hn Hfin. unfold number_finite in Hfin. zbool. destruct (number_tests number Hn) as [_ Hz].
  pose proof (proj1 (proj2 (proj2 (number_fields number Hn)))).
  destruct (Z.lt_ge_cases (ecma_number_biased_exp number) 1023); [| apply number_to_digits_large; [assumption | lia]].
  pose proof (number_below_one number Hn ltac:(lia)) as Hm.
  rewrite (Z.div_small _ _ Hm), (Z.mod_small _ _ Hm).
  unfold ecma_bigint_number_to_digits. rewrite Hz. change exponent_bias with 1023. rewrite (proj2 (Z.ltb_lt _ 1023)) by lia.
  destruct (Z.eqb_spec (number_magnitude number) 0).
  - apply (packed_ok_intro 0 false 0 0 0); [apply digits_of_none | reflexivity | reflexivity].
  - apply (packed_ok_intro 0 true 0 0 65536); [apply digits_of_none | reflexivity | reflexivity].
Qed.

(** ** Comparing magnitudes with numbers *)

(** All the digits of the integer part *)
Lemma digits_of_all t n z ds : digits_of t n z ds -> 0 < n ->
  let all := repeat 0 (Z.to_nat z) ++ firstn (Z.to_nat n) ds in
  digits_ok all /\ zlength all = n + z /\ last all 0 <> 0 /\ digits_value all = t.
Proof.
  intros [Hl Hok Hlast Hb Hv] Hn all. unfold all. splits.
  - apply Forall_app. split; [apply digits_ok_repeat0 | assumption].
  - rewrite zlength_app, zlength_repeat by lia. lia.
  - destruct (@exists_last _ (firstn (Z.to_nat n) ds)) as (l & x & E).
    { intros E. rewrite E, (@zlength_nil Z) in Hl. lia. }
    rewrite E in *. rewrite app_assoc, !last_last in *. lia.
  - rewrite digits_value_app, digits_value_repeat0, zlength_repeat by lia. lia.
Qed.

Lemma compare_value_digits_eq left_sign rl : forall rr,
  compare_value_digits rl rr left_sign =
    if compare_digits rl rr =? 0 then None else Some (left_sign * compare_digits rl rr).
Proof.
  induction rl as [|l rl IH]; intros [|r rr]; cbn [compare_value_digits compare_digits]; try reflexivity.
  destruct (Z.eqb_spec l r) as [->|]; cbn [negb].
  - rewrite Z.ltb_irrefl. apply IH.
  - destruct (Z.ltb_spec l r), (Z.ltb_spec r l); cbn; try lia; f_equal; lia.
Qed.

Lemma rev_split {A} (l : list A) (n z : nat) : length l = (n + z)%nat ->
  firstn n (rev l) = rev (skipn z l) /\ skipn n (rev l) = rev (firstn z l).
Proof.
  intros H. replace n with (length l - z)%nat by lia. rewrite skipn_rev, firstn_rev.
  replace (length l - (length l - z))%nat with z by lia. auto.
Qed.

Lemma forallb_rev {A} (f : A -> bool) l : forallb f (rev l) = forallb f l.
Proof.
  induction l as [|x l IH]; [reflexivity |]. cbn [rev forallb]. rewrite forallb_app, IH. cbn [forallb]. now destruct (f x), (forallb f l).
Qed.

(** The digit loops of ecma_bigint_compare_to_number for operands of the same size *)
Lemma compare_same_size l n z ds t s frac : digits_ok l -> zlength l = n + z -> digits_of t n z ds -> 0 < n ->
  match compare_value_digits (firstn (Z.to_nat n) (rev l)) (rev (firstn (Z.to_nat n) ds)) s with
  | Some r => r
  | None => if negb (forallb (fun d => d =? 0) (skipn (Z.to_nat n) (rev l))) then s else if frac : bool then - s else 0
  end = s * (if digits_value l =? t then (if frac then -1 else 0) else Z.sgn (digits_value l - t)).
Proof.
  intros Hok Hlen D Hn. pose proof (digits_of_bounds _ _ _ _ D) as Hb.
  destruct (rev_split l (Z.to_nat n) (Z.to_nat z) ltac:(unfold zlength in Hlen; lia)) as [-> ->].
  rewrite forallb_rev, compare_value_digits_eq.
  pose proof (digits_of_length _ _ _ _ D) as Hd. rewrite <- (digits_of_value _ _ _ _ D).
  pose proof (firstn_skipn (Z.to_nat z) l) as Hsplit.
  assert (Hz : zlength (firstn (Z.to_nat z) l) = z) by (unfold zlength in *; rewrite firstn_length_le; lia).
  rewrite <- Hsplit in Hok, Hlen. apply Forall_app in Hok as [Hlo Hhi]. rewrite zlength_app in Hlen.
  rewrite compare_digits_spec; rewrite ?rev_involutive; try assumption; [| apply (digits_of_ok _ _ _ _ D)
    | unfold zlength in *; rewrite !length_rev; lia].
  replace (digits_value l) with (digits_value (firstn (Z.to_nat z) l ++ skipn (Z.to_nat z) l)) by now rewrite Hsplit.
  rewrite digits_value_app, Hz. pose proof (digits_value_bound _ Hlo) as Blo. rewrite Hz in Blo.
  pose proof (digits_value_zero _ Hlo) as Zlo. pose proof (pow32_pos z ltac:(lia)) as Hp.
  set (p := B32 ^ z) in *. set (lo := digits_value (firstn (Z.to_nat z) l)) in *.
  set (hi := digits_value (skipn (Z.to_nat z) l)). set (d := digits_value (firstn (Z.to_nat n) ds)).
  destruct (Z.compare_spec hi d) as [E|E|E]; cbn [Z.eqb].
  - rewrite E. destruct (forallb _ _); cbn [negb].
    + rewrite (proj2 Zlo eq_refl), (proj2 (Z.eqb_eq _ _)) by lia. destruct frac; lia.
    + destruct (Z.eqb_spec (lo + p * d) (d * p)); [exfalso; assert (lo = 0) by lia; intuition congruence |].
      rewrite Z.sgn_pos by lia. lia.
  - assert (lo + p * hi < d * p) by nia. rewrite (proj2 (Z.eqb_neq _ _)) by lia. rewrite Z.sgn_neg by lia. lia.
  - assert (d * p < lo + p * hi) by nia. rewrite (proj2 (Z.eqb_neq _ _)) by lia. rewrite Z.sgn_pos by lia. lia.
Qed.

(** Magnitudes with a different number of digits *)
Lemma compare_other_size l n z ds t : digits_ok l -> last l 0 <> 0 -> zlength l <> n + z ->
  digits_of t n z ds -> 0 < n -> if n + z <? zlength l then t < digits_value l else digits_value l < t.
Proof.
  intros Hok Hlast Hlen D Hn. destruct (digits_of_all _ _ _ _ D Hn) as (A1 & A2 & A3 & A4).
  pose proof (digits_value_bound _ A1). pose proof (digits_value_lower _ A1 A3).
  pose proof (digits_value_bound _ Hok). pose proof (digits_value_lower _ Hok Hlast). rewrite A4, A2 in *.
  pose proof (digits_of_bounds _ _ _ _ D). pose proof (zlength_nonneg l).
  destruct (Z.ltb_spec (n + z) (zlength l)).
  - assert (B32 ^ (n + z) <= B32 ^ (zlength l - 1)) by (apply Z.pow_le_mono_r; lia). lia.
  - assert (B32 ^ zlength l <= B32 ^ (n + z - 1)) by (apply Z.pow_le_mono_r; lia). lia.
Qed.

(** The sign of a finite number *)
Lemma number_sign_tests number : is_u64 number -> number_finite number = true ->
  number_gt_zero number = (0 <? number_scaled number) /\ number_lt_zero number = (number_scaled number <? 0)
  /\ 0 <= number_magnitude number.
Proof.
  intros Hn Hf. destruct (number_tests number Hn) as [T1 T2]. rewrite Hf in T1. apply orb_false_elim in T1 as [T1 _].
  destruct (number_fields number Hn) as (_ & _ & He & Hr & _).
  assert (H : 0 <= number_magnitude number).
  { unfold number_magnitude. destruct (Z.eqb_spec (ecma_number_biased_exp number) 0); [lia |].
    pose proof (Z.pow_pos_nonneg 2 (ecma_number_biased_exp number - 1) ltac:(lia) ltac:(lia)). nia. }
  unfold number_gt_zero, number_lt_zero, number_scaled. rewrite T1, T2.
  destruct (Z.eqb_spec (number_magnitude number) 0), (ecma_number_sign number); cbn [negb andb]; splits; try assumption;
    symmetry; first [apply Z.ltb_lt; lia | apply Z.ltb_ge; lia].
Qed.

(** The magnitude between two multiples of the unit *)
Lemma unit_pos : 0 < number_unit.
Proof. rewrite unit_split. pose proof pow_1022_pos. lia. Qed.

Lemma magnitude_compare V A : 
  Z.sgn (V * number_unit - A) =
    if V =? A / number_unit then (if negb (A mod number_unit =? 0) then -1 else 0) else Z.sgn (V - A / number_unit).
Proof.
  pose proof unit_pos as U. generalize dependent number_unit. intros u U.
  pose proof (Z.div_mod A u ltac:(lia)) as E. pose proof (Z.mod_pos_bound A u U) as R. set (q := A / u) in *. set (r := A mod u) in *.
  destruct (Z.eqb_spec V q) as [->|].
  - destruct (Z.eqb_spec r 0); cbn [negb]; lia.
  - destruct (Z.lt_ge_cases V q); [rewrite !Z.sgn_neg | rewrite !Z.sgn_pos]; nia.
Qed.

(** The magnitude part of ecma_bigint_compare_to_number *)
Lemma compare_magnitude v number s : big_uint_wf v -> is_u64 number -> number_finite number = true ->
  (let (result, digits) := ecma_bigint_number_to_digits number in
   let digits_size := ECMA_BIGINT_NUMBER_TO_DIGITS_GET_DIGITS_SIZE result in
   if digits_size =? 0 then s
   else
     let left_size := ECMA_BIGINT_GET_SIZE v in
     let right_size := digits_size + ECMA_BIGINT_NUMBER_TO_DIGITS_GET_ZERO_SIZE result in
     if negb (left_size =? right_size) then (if right_size <? left_size then s else - s)
     else
       let n := in_digits digits_size in
       let rev_left := rev (bigint_digits v) in
       match compare_value_digits (firstn n rev_left) (rev (firstn n digits)) s with
       | Some r => r
       | None => if negb (forallb (fun d => d =? 0) (skipn n rev_left)) then s else if has_fraction result then - s else 0
       end) = s * Z.sgn (big_uint_value v * number_unit - number_magnitude number).
Proof.
  intros Hv Hn Hf. destruct (number_to_digits_spec number Hn Hf) as (n & z & E1 & E2 & E3 & D).
  destruct (ecma_bigint_number_to_digits number) as [result digits]. cbn [fst snd] in *. cbv zeta. rewrite E1, E2, E3.
  rewrite magnitude_compare. pose proof (digits_of_bounds _ _ _ _ D) as Hb. pose proof (wf_value_pos v Hv).
  set (t := number_magnitude number / number_unit) in *. rewrite (wf_size _ Hv). unfold digits_size in *.
  destruct (Z.eqb_spec (4 * n) 0).
  - assert (n = 0) as -> by lia. pose proof (digits_of_value _ _ _ _ D) as Ht. cbn in Ht.
    rewrite (proj2 (Z.eqb_neq _ _)), Z.sgn_pos by lia. lia.
  - unfold in_digits. replace (Z.to_nat (4 * n / 4)) with (Z.to_nat n) by (f_equal; Z.div_mod_to_equations; lia).
    destruct (Z.eqb_spec (4 * zlength (bigint_digits v)) (4 * n + 4 * z)); cbn [negb].
    + apply (compare_same_size _ n z); try assumption; try lia. apply (wf_digits _ Hv).
    + pose proof (compare_other_size (bigint_digits v) n z digits t (wf_digits _ Hv) (wf_last _ Hv) ltac:(lia) D ltac:(lia)) as C.
      fold (big_uint_value v) in C. destruct (Z.ltb_spec (n + z) (zlength (bigint_digits v)));
        destruct (Z.ltb_spec (4 * n + 4 * z) (4 * zlength (bigint_digits v))); try lia;
        rewrite (proj2 (Z.eqb_neq _ _)) by lia; [rewrite Z.sgn_pos by lia | rewrite Z.sgn_neg by lia]; lia.
Qed.

Lemma number_not_nan number : is_u64 number -> ecma_number_is_nan number = false ->
  number_finite number = negb (ecma_number_is_infinity number).
Proof.
  intros Hn E. destruct (number_tests number Hn) as [T _]. rewrite E in T. cbn [orb] in T. rewrite T. now destruct (number_finite number).
Qed.

Lemma infinity_signs number : is_u64 number -> ecma_number_is_infinity number = true ->
  ecma_number_is_zero number = false /\ number_gt_zero number = negb (ecma_number_sign number).
Proof.
  intros Hn E. destruct (number_fields number Hn) as (_ & _ & He & Hf & Hl). unfold ecma_number_is_infinity in E.
  apply Z.eqb_eq in E. unfold number_gt_zero, ecma_number_is_zero, ecma_number_is_nan.
  rewrite E in *. cbn [Z.eqb ECMA_NUMBER_BINARY_INF]. unfold ECMA_NUMBER_BINARY_INF in Hl.
  replace (0 <? ecma_number_fraction number) with false by (symmetry; apply Z.ltb_ge; lia).
  rewrite andb_false_r. auto.
Qed.

Lemma bigint_compare_number left number : bigint_ok left -> is_u64 number -> ecma_number_is_nan number = false ->
  ecma_bigint_compare_to_number left number =
    if ecma_number_is_infinity number then (if ecma_number_sign number then 1 else -1)
    else Z.sgn (bigint_to_Z left * number_unit - number_scaled number).
Proof.
  intros Hl Hn Hnan. pose proof (number_not_nan number Hn Hnan) as Hfin. unfold ecma_bigint_compare_to_number.
  destruct (ecma_number_is_infinity number) eqn:Einf; cbn [negb] in Hfin.
  - destruct (infinity_signs number Hn Einf) as [-> ->].
    destruct left as [|l]; [now destruct (ecma_number_sign number) |]. cbn [orb].
    destruct (sign_of_wf l Hl) as [Hs _]. assert (Hs' : sign_of l = 0 \/ sign_of l = 1) by lia.
    destruct (ecma_number_sign number), Hs' as [-> | ->]; reflexivity.
  - destruct (number_sign_tests number Hn Hfin) as (-> & _ & Hm). destruct (number_tests number Hn) as [_ ->].
    pose proof unit_pos as Hu. unfold number_scaled.
    destruct left as [|l]; cbn [bigint_to_Z].
    + destruct (Z.eqb_spec (number_magnitude number) 0), (ecma_number_sign number);
        repeat match goal with |- context [Z.ltb ?a ?b] => destruct (Z.ltb_spec a b) end; cbn [Z.b2z]; unfold ECMA_BIGINT_TO_SIGN; cbn [Z.shiftl Pos.iter]; lia.
    + pose proof Hl as [Wl _]. pose proof (compare_magnitude l number (ECMA_BIGINT_TO_SIGN (sign_of l)) Wl Hn Hfin) as C.
      cbv zeta in C |- *. rewrite C. clear C.
      pose proof (bigint_pos l Hl) as Hpos. assert (Hprod : 0 < big_uint_value l * number_unit) by nia.
      set (u := number_unit) in *. clearbody u.
      sign_cases Hl; unfold ECMA_BIGINT_TO_SIGN; cbn [Z.shiftl Pos.iter]; rewrite ?Z.mul_opp_l;
        destruct (Z.eqb_spec (number_magnitude number) 0), (ecma_number_sign number);
        repeat match goal with |- context [Z.ltb ?a ?b] => destruct (Z.ltb_spec a b) end; cbn [Z.b2z Z.shiftl Pos.iter orb]; try lia;
        match goal with |- context [Z.eqb ?a ?b] => destruct (Z.eqb_spec a b) end; lia.
Qed.

(** The digit comparison of ecma_bigint_is_equal_to_number *)
Lemma equal_same_size l n z ds t : digits_ok l -> zlength l = n + z -> digits_of t n z ds -> 0 < n ->
  (if negb (digits_eqb (firstn (Z.to_nat n) (skipn (Z.to_nat z) l)) (firstn (Z.to_nat n) ds)) then false
   else forallb (fun d => d =? 0) (firstn (Z.to_nat z) l)) = (digits_value l =? t).
Proof.
  intros Hok Hlen D Hn. pose proof (digits_of_bounds _ _ _ _ D) as Hb. rewrite <- (digits_of_value _ _ _ _ D).
  pose proof (digits_of_length _ _ _ _ D) as Hd. pose proof (firstn_skipn (Z.to_nat z) l) as Hsplit.
  assert (Hz : zlength (firstn (Z.to_nat z) l) = z) by (unfold zlength in *; rewrite firstn_length_le; lia).
  rewrite <- Hsplit in Hok, Hlen. apply Forall_app in Hok as [Hlo Hhi]. rewrite zlength_app in Hlen.
  rewrite (firstn_all2 (skipn (Z.to_nat z) l)) by (unfold zlength in *; lia).
  replace (digits_value l) with (digits_value (firstn (Z.to_nat z) l ++ skipn (Z.to_nat z) l)) by now rewrite Hsplit.
  rewrite digits_value_app, Hz. pose proof (digits_value_bound _ Hlo) as Blo. rewrite Hz in Blo.
  pose proof (digits_value_zero _ Hlo) as Zlo. pose proof (pow32_pos z ltac:(lia)) as Hp.
  set (p := B32 ^ z) in *. set (lo := digits_value (firstn (Z.to_nat z) l)) in *.
  destruct (digits_eqb _ _) eqn:E; cbn [negb].
  - apply digits_eqb_spec in E. rewrite E. apply eq_true_iff_eq. rewrite <- Zlo, Z.eqb_eq. lia.
  - symmetry. apply Z.eqb_neq. intros Hv.
    assert (Hhd : digits_value (skipn (Z.to_nat z) l) = digits_value (firstn (Z.to_nat n) ds)) by nia.
    apply digits_value_inj in Hhd; [| assumption | apply (digits_of_ok _ _ _ _ D) | unfold zlength in *; lia].
    rewrite Hhd in E. assert (Ht : digits_eqb (firstn (Z.to_nat n) ds) (firstn (Z.to_nat n) ds) = true) by now apply digits_eqb_spec.
    congruence.
Qed.

(** The magnitude part of ecma_bigint_is_equal_to_number *)
Lemma equal_magnitude v number : big_uint_wf v -> is_u64 number -> number_finite number = true ->
  (let (result, digits) := ecma_bigint_number_to_digits number in
   if has_fraction result then false
   else
     let digits_size := ECMA_BIGINT_NUMBER_TO_DIGITS_GET_DIGITS_SIZE result in
     let zero_size := ECMA_BIGINT_NUMBER_TO_DIGITS_GET_ZERO_SIZE result in
     if negb (ECMA_BIGINT_GET_SIZE v =? digits_size + zero_size) then false
     else
       let left_p := bigint_digits v in
       let left_end_p := skipn (in_digits zero_size) left_p in
       if negb (digits_eqb (firstn (in_digits digits_size) left_end_p) (firstn (in_digits digits_size) digits))
       then false
       else forallb (fun d => d =? 0) (firstn (in_digits zero_size) left_p))
  = (big_uint_value v * number_unit =? number_magnitude number).
Proof.
  intros Hv Hn Hf. destruct (number_to_digits_spec number Hn Hf) as (n & z & E1 & E2 & E3 & D).
  destruct (ecma_bigint_number_to_digits number) as [result digits]. cbn [fst snd] in *. cbv zeta. rewrite E1, E2, E3.
  pose proof (magnitude_compare (big_uint_value v) (number_magnitude number)) as C.
  replace (big_uint_value v * number_unit =? number_magnitude number)
    with (Z.sgn (big_uint_value v * number_unit - number_magnitude number) =? 0)
    by (apply eq_true_iff_eq; rewrite !Z.eqb_eq, Z.sgn_null_iff; lia).
  rewrite C. clear C. pose proof (digits_of_bounds _ _ _ _ D) as Hb. pose proof (wf_value_pos v Hv).
  set (t := number_magnitude number / number_unit) in *. rewrite (wf_size _ Hv). unfold digits_size, in_digits in *.
  replace (Z.to_nat (4 * n / 4)) with (Z.to_nat n) by (f_equal; Z.div_mod_to_equations; lia).
  replace (Z.to_nat (4 * z / 4)) with (Z.to_nat z) by (f_equal; Z.div_mod_to_equations; lia).
  destruct (Z.eqb_spec (big_uint_value v) t) as [Et|Et].
  - destruct (number_magnitude number mod number_unit =? 0); cbn [negb]; [| reflexivity].
    assert (Hn0 : 0 < n).
    { destruct (Z.eq_dec n 0) as [->|]; [| lia]. pose proof (digits_of_value _ _ _ _ D) as Hv0. cbn in Hv0. lia. }
    destruct (Z.eqb_spec (4 * zlength (bigint_digits v)) (4 * n + 4 * z)); cbn [negb].
    + rewrite (equal_same_size _ n z digits t); try assumption; try lia; [| apply (wf_digits _ Hv)].
      change (digits_value (bigint_digits v)) with (big_uint_value v). now apply Z.eqb_eq.
    + pose proof (compare_other_size (bigint_digits v) n z digits t (wf_digits _ Hv) (wf_last _ Hv) ltac:(lia) D Hn0) as C.
      fold (big_uint_value v) in C. destruct (n + z <? zlength (bigint_digits v)); lia.
  - rewrite (proj2 (Z.eqb_neq (Z.sgn _) 0)) by (rewrite Z.sgn_null_iff; lia).
    destruct (negb (number_magnitude number mod number_unit =? 0)); [reflexivity |].
    destruct (Z.eqb_spec (4 * zlength (bigint_digits v)) (4 * n + 4 * z)); cbn [negb]; [| reflexivity].
    destruct (Z.eq_dec n 0) as [->|].
    + assert (z = 0) as -> by lia. pose proof (zlength_pos _ (wf_nonempty v Hv)). lia.
    + rewrite (equal_same_size _ n z digits t); try assumption; try lia; [| apply (wf_digits _ Hv)].
      change (digits_value (bigint_digits v)) with (big_uint_value v). now apply Z.eqb_neq.
Qed.

Lemma bigint_equal_number left number : bigint_ok left -> is_u64 number ->
  ecma_bigint_is_equal_to_number left number =
    number_finite number && (bigint_to_Z left * number_unit =? number_scaled number).
Proof.
  intros Hl Hn. unfold ecma_bigint_is_equal_to_number. destruct (number_tests number Hn) as [-> ->].
  destruct (number_finite number) eqn:Hfin; cbn [negb andb]; [| reflexivity].
  destruct (number_sign_tests number Hn Hfin) as (-> & -> & Hm). pose proof unit_pos as Hu. unfold number_scaled.
  destruct left as [|l]; cbn [bigint_to_Z].
  - destruct (ecma_number_sign number); apply eq_true_iff_eq; rewrite !Z.eqb_eq; lia.
  - pose proof Hl as [Wl _]. pose proof (equal_magnitude l number Wl Hn Hfin) as C. cbv zeta in C |- *. rewrite C. clear C.
    pose proof (bigint_pos l Hl) as Hpos. assert (Hprod : 0 < big_uint_value l * number_unit) by nia.
    set (u := number_unit) in *. clearbody u.
    sign_cases Hl; cbn [Z.eqb negb]; rewrite ?Z.mul_opp_l;
      destruct (ecma_number_sign number); match goal with |- context [Z.ltb ?a ?b] => destruct (Z.ltb_spec a b) end;
      first [symmetry; apply Z.eqb_neq; lia | apply eq_true_iff_eq; rewrite !Z.eqb_eq; lia].
Qed.

Section NumberToBigint.
Context {HA : HeapAlloc}.

(** A new BigInt filled with normalised digits *)
Lemma wp_create_signed size ds (sign : bool) x (k : option ecma_extended_primitive_t -> M bigint_outcome) :
  size = digits_size ds -> digits_ok ds -> last ds 0 <> 0 ->
  x = (if sign then - digits_value ds else digits_value ds) ->
  k None = ret (BI_ERROR ECMA_ERR_ALLOCATE_BIGINT_VALUE) ->
  (forall r, k (Some r) = ret (BI_NEW (or_sign (set_digits r ds) (if sign then ECMA_BIGINT_SIGN else 0)))) ->
  wp (bind (ecma_bigint_create size) k) (bigint_result x).
Proof.
  intros -> Hok Hl -> HN HS. wp_step. apply wp_create; intros Hm.
  - rewrite HS. wp_step. rewrite Z.add_0_r.
    apply (make_value_result (digits_value ds) (BIGINT_PTR (mk_primitive 14 (digits_size ds) ds)));
      [now apply digits_value_pos | unfold ECMA_BIGINT_SIGN; destruct sign; lia | | now destruct sign].
    apply (result_fresh (mk_primitive 14 (digits_size ds) ds)); try assumption; try reflexivity. now apply primitive_fresh.
  - rewrite HN. wp_step. split; [reflexivity |]. intros Ha. unfold int_too_large.
    replace (Z.abs _) with (digits_value ds) by (pose proof (digits_value_pos ds Hok Hl); destruct sign; lia).
    apply too_large_size; auto.
Qed.

(** What ecma_bigint_number_to_bigint does with a number *)
Definition number_to_bigint_outcome (number : Z) (o : bigint_outcome) (held : Z) : Prop :=
  if negb (number_finite number) then
    o = BI_ERROR ECMA_ERR_INFINITY_OR_NAN_CANNOT_BE_CONVERTED_TO_BIGINT /\ held = 0
  else if negb (number_scaled number mod number_unit =? 0) then
    o = BI_ERROR ECMA_ERR_ONLY_INTEGER_NUMBERS_CAN_BE_CONVERTED_TO_BIGINT /\ held = 0
  else bigint_result (number_scaled number / number_unit) o held.

Lemma or_sign_0 v : or_sign v 0 = v.
Proof. destruct v. unfold or_sign. cbn. now rewrite Z.lor_0_r. Qed.

Lemma number_scaled_unit number :
  (number_scaled number mod number_unit =? 0) = (number_magnitude number mod number_unit =? 0)
  /\ (number_magnitude number mod number_unit = 0 ->
      number_scaled number / number_unit
      = if ecma_number_sign number then - (number_magnitude number / number_unit) else number_magnitude number / number_unit).
Proof.
  pose proof unit_pos as U. unfold number_scaled. generalize dependent number_unit. intros u U.
  destruct (ecma_number_sign number); [| auto]. set (a := number_magnitude number). split.
  - apply eq_true_iff_eq. rewrite !Z.eqb_eq, !Z.mod_divide by lia. apply Z.divide_opp_r.
  - intros H. now apply Z_div_zero_opp_full.
Qed.

Lemma wp_number_to_bigint number : is_u64 number ->
  wp (ecma_bigint_number_to_bigint number) (number_to_bigint_outcome number).
Proof.
  intros Hn. unfold ecma_bigint_number_to_bigint. destruct (number_tests number Hn) as [-> _].
  destruct (number_finite number) eqn:Hfin; cbn [negb].
  2: { wp_step. unfold number_to_bigint_outcome. rewrite Hfin. now split. }
  eapply wp_mono with (Q := fun o held => if negb (number_magnitude number mod number_unit =? 0)
     then o = BI_ERROR ECMA_ERR_ONLY_INTEGER_NUMBERS_CAN_BE_CONVERTED_TO_BIGINT /\ held = 0
     else bigint_result (number_scaled number / number_unit) o held).
  2: { intros o held. unfold number_to_bigint_outcome. rewrite Hfin, (proj1 (number_scaled_unit number)). cbn [negb]. exact (fun H => H). }
  destruct (number_to_digits_spec number Hn Hfin) as (n & z & E1 & E2 & E3 & D).
  destruct (ecma_bigint_number_to_digits number) as [result digits]. cbn [fst snd] in *. rewrite E3.
  destruct (Z.eqb_spec (number_magnitude number mod number_unit) 0) as [Hm|Hm]; cbn [negb]; [| now wp_step].
  cbv zeta. rewrite E1, E2, (proj2 (number_scaled_unit number) Hm). pose proof (digits_of_bounds _ _ _ _ D) as Hb.
  destruct (number_sign_tests number Hn Hfin) as (_ & Hlt & Hpos). pose proof unit_pos as U.
  set (t := number_magnitude number / number_unit) in *. destruct (Z.eqb_spec (4 * n) 0).
  - wp_step. assert (n = 0) as -> by lia. pose proof (digits_of_value _ _ _ _ D) as Ht. cbn in Ht.
    split; [| reflexivity]. destruct (ecma_number_sign number); lia.
  - destruct (digits_of_all _ _ _ _ D ltac:(lia)) as (A1 & A2 & A3 & A4). unfold in_digits.
    replace (Z.to_nat (4 * n / 4)) with (Z.to_nat n) by (f_equal; Z.div_mod_to_equations; lia).
    replace (Z.to_nat (4 * z / 4)) with (Z.to_nat z) by (f_equal; Z.div_mod_to_equations; lia).
    pose proof (digits_value_pos _ A1 A3) as Ht. rewrite A4 in Ht.
    assert (Hs : number_lt_zero number = ecma_number_sign number).
    { rewrite Hlt. unfold number_scaled. pose proof (Z.div_mod (number_magnitude number) number_unit ltac:(lia)) as Ed.
      fold t in Ed. rewrite Hm in Ed. clearbody t. set (u := number_unit) in *. clearbody u. assert (0 < u * t) by nia.
      destruct (ecma_number_sign number); [apply Z.ltb_lt | apply Z.ltb_ge]; lia. }
    apply (wp_create_signed _ (repeat 0 (Z.to_nat z) ++ firstn (Z.to_nat n) digits) (ecma_number_sign number)); try assumption;
      [unfold digits_size; rewrite A2; lia | now rewrite A4 | reflexivity |].
    intros r. rewrite Hs. destruct (ecma_number_sign number); [reflexivity | now rewrite or_sign_0].
Qed.
End NumberToBigint.

(** ** Rounding to a number *)

(** The number with 53 significant bits that is nearest to [n], ties to even *)
Definition round_half_even (n : Z) : Z :=
  let s := Z.log2 n - 52 in
  if s <=? 0 then n
  else
    let q := n / 2 ^ s in
    let r := n mod 2 ^ s in
    let half := 2 ^ (s - 1) in
    (if (half <? r) || ((r =? half) && Z.odd q) then q + 1 else q) * 2 ^ s.

(** The first 65 bits of [n] end in a tie to even, and a lower bit is set *)
Definition tie_beyond_64_bits (n : Z) : bool :=
  let s := Z.log2 n - 64 in
  (0 <? s) && ((n / 2 ^ s) mod 2 ^ 13 =? 2 ^ 11) && negb (n mod 2 ^ s =? 0).

(** Rounding of the first 65 bits [X] with [low] below them *)
Definition round_up_65 (X low : Z) : bool :=
  (2 ^ 11 <? X mod 2 ^ 12) || ((X mod 2 ^ 12 =? 2 ^ 11) && (Z.odd (X / 2 ^ 12) || negb (low =? 0))).

(** A division scaled by [c] *)
Lemma number_div_scaled V q d c y : 0 < d -> 0 < c -> V * c = q * (d * c) + y -> 0 <= y < d * c ->
  V / d = q /\ (V mod d) * c = y.
Proof.
  intros Hd Hc E Hy. pose proof (Z.div_mod V d ltac:(lia)) as Ed. pose proof (Z.mod_pos_bound V d Hd) as Hm.
  set (q' := V / d) in *. set (r := V mod d) in *. clearbody q' r. subst V.
  assert (0 <= r * c < d * c) by nia. set (p := d * c) in *. assert (q' * p + r * c = q * p + y) by (unfold p in *; nia).
  assert (q' = q) by nia. split; [assumption | subst q'; lia].
Qed.

(** The rounding decision scaled by [c] *)
Lemma round_up_scaled x low r h c p q : 0 < c -> 0 <= low < p -> h * c = 2 ^ 11 * p -> r * c = x * p + low ->
  ((h <? r) || (r =? h) && Z.odd q) = ((2 ^ 11 <? x) || (x =? 2 ^ 11) && (Z.odd q || negb (low =? 0))).
Proof.
  intros Hc Hlow Eh Er. destruct (Z.lt_total x (2 ^ 11)) as [Hx|[Hx|Hx]].
  - assert (r * c < h * c) by nia. assert (r < h) by nia.
    rewrite (proj2 (Z.ltb_ge (2 ^ 11) x)), (proj2 (Z.ltb_ge h r)), (proj2 (Z.eqb_neq x _)), (proj2 (Z.eqb_neq r _)) by lia. reflexivity.
  - rewrite Hx in *. change (2 ^ 11 <? 2 ^ 11) with false. change (2 ^ 11 =? 2 ^ 11) with true. cbn [orb andb].
    destruct (Z.eqb_spec low 0).
    + assert (r = h) as -> by nia. rewrite Z.ltb_irrefl, Z.eqb_refl. cbn. now destruct (Z.odd q).
    + assert (h < r) by nia. rewrite (proj2 (Z.ltb_lt h r)) by lia. cbn. now destruct (Z.odd q).
  - assert (h * c < r * c) by nia. assert (h < r) by nia.
    rewrite (proj2 (Z.ltb_lt (2 ^ 11) x)), (proj2 (Z.ltb_lt h r)) by lia. reflexivity.
Qed.

Lemma round_half_even_65 V X low : 0 < V ->
  V * 2 ^ 64 = X * 2 ^ Z.log2 V + low -> 0 <= low < 2 ^ Z.log2 V ->
  (X / 2 ^ 12 + Z.b2z (round_up_65 X low)) * 2 ^ (Z.log2 V + 12) = round_half_even V * 2 ^ 64.
Proof.
  intros HV E Hlow. set (e := Z.log2 V) in *. assert (He : 0 <= e) by apply Z.log2_nonneg.
  assert (Hp : 0 < 2 ^ e) by (apply Z.pow_pos_nonneg; lia).
  pose proof (Z.div_mod X (2 ^ 12) ltac:(lia)) as EX. pose proof (Z.mod_pos_bound X (2 ^ 12) ltac:(lia)) as Hx.
  unfold round_half_even, round_up_65. fold e. set (q := X / 2 ^ 12) in *. set (x := X mod 2 ^ 12) in *.
  assert (E12 : 2 ^ (e + 12) = 2 ^ 12 * 2 ^ e) by (rewrite Z.pow_add_r by lia; lia).
  assert (EV : V * 2 ^ 64 = q * 2 ^ (e + 12) + (x * 2 ^ e + low)) by (rewrite E12; rewrite E, EX at 1; ring).
  assert (Hr : 0 <= x * 2 ^ e + low < 2 ^ (e + 12)) by (rewrite E12; nia).
  destruct (Z.leb_spec (e - 52) 0) as [Hs|Hs].
  - assert (E64 : 2 ^ 64 = 2 ^ (52 - e) * 2 ^ (e + 12)) by (rewrite <- Z.pow_add_r by lia; f_equal; lia).
    rewrite E64, Z.mul_assoc in EV.
    destruct (number_div_scaled (V * 2 ^ (52 - e)) q 1 (2 ^ (e + 12)) (x * 2 ^ e + low)) as [<- Hz]; try lia.
    rewrite Z.mod_1_r, Z.div_1_r in *. assert (x = 0 /\ low = 0) as [-> ->] by nia.
    change (2 ^ 11 <? 0) with false. change (0 =? 2 ^ 11) with false. cbn [orb andb Z.b2z]. rewrite E64. ring.
  - set (s := e - 52) in *. assert (E64 : 2 ^ (e + 12) = 2 ^ s * 2 ^ 64) by (rewrite <- Z.pow_add_r by lia; f_equal; lia).
    assert (Hps : 0 < 2 ^ s) by (apply Z.pow_pos_nonneg; lia). rewrite E64 in *.
    assert (Eh : 2 ^ (s - 1) * 2 ^ 64 = 2 ^ 11 * 2 ^ e) by (rewrite <- !Z.pow_add_r by lia; f_equal; lia).
    destruct (number_div_scaled V q (2 ^ s) (2 ^ 64) (x * 2 ^ e + low)) as [-> Hr']; try lia.
    rewrite (round_up_scaled x low _ _ (2 ^ 64) (2 ^ e) q) by lia.
    match goal with |- context [Z.b2z ?b] => destruct b end; cbn [Z.b2z]; ring.
Qed.

(** ** The leading digits *)

Definition top_three (ds : list Z) : Z := top_digit ds 1 * B64 + top_digit ds 2 * B32 + top_digit ds 3.

(** The value of the digits below the first three *)
Definition low_digits (ds : list Z) : Z := digits_value (rev (skipn 3 (rev ds))).

Lemma zlength_rev {A} (l : list A) : zlength (rev l) = zlength l.
Proof. unfold zlength. now rewrite length_rev. Qed.

Lemma top_digits_spec ds : digits_ok ds -> last ds 0 <> 0 ->
  is_u32 (top_digit ds 1) /\ is_u32 (top_digit ds 2) /\ is_u32 (top_digit ds 3) /\ 0 < top_digit ds 1
  /\ digits_value ds * B64 = top_three ds * B32 ^ (zlength ds - 1) + low_digits ds * B64
  /\ 0 <= low_digits ds * B64 < B32 ^ (zlength ds - 1) /\ 0 <= low_digits ds
  /\ (zlength ds < 2 -> top_digit ds 2 = 0) /\ (zlength ds < 3 -> top_digit ds 3 = 0 /\ low_digits ds = 0).
Proof.
  intros Hok Hl. unfold top_three, low_digits, top_digit. rewrite last_hd_rev in Hl. unfold digits_ok in Hok. apply Forall_rev in Hok.
  replace (zlength ds) with (zlength (rev ds)) by apply zlength_rev.
  replace (digits_value ds) with (digits_value (rev (rev ds))) by now rewrite rev_involutive.
  set (rl := rev ds) in *. clearbody rl. clear ds.
  assert (U0 : is_u32 0) by (unfold is_u32; lia).
  destruct Hok as [|a rl Ha Hok]; [easy |]. cbn [hd] in Hl. unfold is_u32 in Ha.
  destruct Hok as [|b rl Hb Hok]; [| destruct Hok as [|c rl Hc Hok]]; cbn [nth Nat.sub rev app skipn].
  - change (zlength [a]) with 1. cbn [digits_value]. unfold is_u32 in *. change (B32 ^ (1 - 1)) with 1. splits; lia.
  - change (zlength [a; b]) with 2. cbn [digits_value]. unfold is_u32 in *. change (B32 ^ (2 - 1)) with B32. splits; lia.
  - rewrite !digits_value_snoc, !zlength_snoc, !zlength_rev, !zlength_cons.
    assert (Hr : digits_ok (rev rl)) by now apply Forall_rev. pose proof (digits_value_bound _ Hr) as Br. rewrite zlength_rev in Br.
    pose proof (zlength_nonneg rl) as Hn. set (n := zlength rl) in *. set (r := digits_value (rev rl)) in *.
    replace (1 + (1 + (1 + n)) - 1) with (2 + n) by lia. rewrite Z.pow_add_r by lia. change (B32 ^ 2) with B64.
    rewrite (Z.add_comm n 1), !Z.pow_add_r by lia. change (B32 ^ 1) with B32.
    pose proof (pow32_pos n Hn) as Hp. set (p := B32 ^ n) in *. clearbody p r.
    splits; try assumption; try (unfold is_u32 in *; lia); try nia.
Qed.

(** ecma_big_uint_count_leading_zero + 1 for a leading digit *)
Lemma shift_left_eq d : is_u32 d -> 0 < d -> u32 (ecma_big_uint_count_leading_zero d + 1) = 32 - Z.log2 d /\ 0 <= Z.log2 d < 32.
Proof.
  intros Hd Hpos. rewrite count_leading_zero_bits by assumption. unfold bit_length. rewrite (proj2 (Z.eqb_neq d 0)) by lia.
  pose proof (Z.log2_nonneg d). assert (Z.log2 d < 32) by (apply Z.log2_lt_pow2; unfold is_u32 in Hd; lia).
  split; [rewrite u32_small by (unfold is_u32; lia); lia | lia].
Qed.

(** The 65 leading bits of three digits *)
Lemma leading_bits d1 d2 d3 : is_u32 d1 -> is_u32 d2 -> is_u32 d3 -> 0 < d1 ->
  let X := (d1 * B64 + d2 * B32 + d3) / 2 ^ Z.log2 d1 in
  Z.lor (Z.lor (u64 (Z.shiftl d1 (64 - Z.log2 d1))) (u64 (Z.shiftl d2 (32 - Z.log2 d1)))) (Z.shiftr d3 (Z.log2 d1)) = X - B64
  /\ B64 <= X < 2 * B64.
Proof.
  intros U1 U2 U3 Hpos X. destruct (shift_left_eq _ U1 Hpos) as [_ Hld]. unfold X. clear X.
  set (ld := Z.log2 d1) in *. pose proof (Z.log2_spec d1 Hpos) as Hd1. fold ld in Hd1.
  rewrite Z.pow_succ_r in Hd1 by lia. unfold is_u32 in *.
  assert (Hp : 0 < 2 ^ ld) by (apply Z.pow_pos_nonneg; lia). assert (Hq : 0 < 2 ^ (32 - ld)) by (apply Z.pow_pos_nonneg; lia).
  assert (EB : B32 = 2 ^ ld * 2 ^ (32 - ld)) by (rewrite <- Z.pow_add_r by lia; replace (ld + (32 - ld)) with 32 by lia; reflexivity).
  assert (E64 : 2 ^ (64 - ld) = B32 * 2 ^ (32 - ld)) by (change B32 with (2 ^ 32); rewrite <- Z.pow_add_r by lia; f_equal; lia).
  assert (EX : (d1 * B64 + d2 * B32 + d3) / 2 ^ ld = d1 * 2 ^ (64 - ld) + d2 * 2 ^ (32 - ld) + d3 / 2 ^ ld).
  { replace (d1 * B64 + d2 * B32 + d3) with (d3 + (d1 * 2 ^ (64 - ld) + d2 * 2 ^ (32 - ld)) * 2 ^ ld)
      by (rewrite E64; change B64 with (B32 * B32); rewrite !EB; ring).
    rewrite Z.div_add by lia. ring. }
  assert (H3 : 0 <= d3 / 2 ^ ld < 2 ^ (32 - ld)) by (split; [apply Z.div_pos | apply Z.div_lt_upper_bound]; lia).
  assert (EP : 2 ^ ld * 2 ^ (64 - ld) = B64)
    by (rewrite <- Z.pow_add_r by lia; replace (ld + (64 - ld)) with 64 by lia; reflexivity).
  assert (H2 : 0 <= d2 * 2 ^ (32 - ld) /\ d2 * 2 ^ (32 - ld) + d3 / 2 ^ ld < 2 ^ (64 - ld)).
  { rewrite E64. assert ((d2 + 1) * 2 ^ (32 - ld) <= B32 * 2 ^ (32 - ld)) by nia. lia. }
  rewrite EX. set (A := d1 - 2 ^ ld). assert (Ed1 : d1 * 2 ^ (64 - ld) = A * 2 ^ (64 - ld) + B64) by (unfold A; lia).
  assert (HF : 0 <= A * 2 ^ (64 - ld) /\ A * 2 ^ (64 - ld) + 2 ^ (64 - ld) <= B64) by (rewrite <- EP; nia).
  rewrite !Z.shiftl_mul_pow2, Z.shiftr_div_pow2, Ed1 by lia. split; [| lia].
  assert (E1 : u64 (A * 2 ^ (64 - ld) + B64) = A * 2 ^ (64 - ld)).
  { unfold u64. rewrite <- (Z.mul_1_l B64) at 1. rewrite Z.mod_add, Z.mod_small; lia. }
  assert (E2 : u64 (d2 * 2 ^ (32 - ld)) = d2 * 2 ^ (32 - ld)) by (apply Z.mod_small; lia).
  rewrite E1, E2, (lor_mul_low A) by lia.
  replace (A * 2 ^ (64 - ld) + d2 * 2 ^ (32 - ld)) with ((A * B32 + d2) * 2 ^ (32 - ld)) by (rewrite E64; ring).
  rewrite lor_mul_low by lia. rewrite E64. ring.
Qed.

Lemma leading_fraction_spec ds : digits_ok ds -> last ds 0 <> 0 ->
  leading_fraction ds = (top_three ds / 2 ^ Z.log2 (top_digit ds 1) - B64, 32 - Z.log2 (top_digit ds 1)).
Proof.
  intros Hok Hl. destruct (top_digits_spec ds Hok Hl) as (U1 & U2 & U3 & Hpos & _ & _ & _ & L2 & L3).
  destruct (shift_left_eq _ U1 Hpos) as [Es Hld]. unfold leading_fraction, top_three, digits_size. rewrite Es.
  rewrite <- (proj1 (leading_bits _ _ _ U1 U2 U3 Hpos)).
  set (d1 := top_digit ds 1) in *. set (d2 := top_digit ds 2) in *. set (d3 := top_digit ds 3) in *.
  assert (Lor : forall f c d s, (4 * zlength ds < c -> d = 0) -> (if c <=? 4 * zlength ds then Z.lor f (Z.shiftr d s) else f) = Z.lor f (Z.shiftr d s)).
  { intros f c d s Hd. destruct (Z.leb_spec c (4 * zlength ds)); [reflexivity |].
    now rewrite Hd, Z.shiftr_0_l, Z.lor_0_r by lia. }
  destruct (Z.eqb_spec d1 1) as [->|_]; cbv zeta.
  - rewrite <- (Z.shiftr_0_r d3) at 1. rewrite Lor by (intros; apply L3; lia). reflexivity.
  - replace (32 - (32 - Z.log2 d1)) with (Z.log2 d1) by lia. rewrite (Lor _ _ d3) by (intros; apply L3; lia).
    replace (32 + (32 - Z.log2 d1)) with (64 - Z.log2 d1) by lia. do 2 f_equal.
    destruct (Z.leb_spec (2 * 4) (4 * zlength ds)); [reflexivity |].
    rewrite L2 by lia. rewrite Z.shiftl_0_l. change (u64 0) with 0. now rewrite Z.lor_0_r.
Qed.

(** What lies below the 65 leading bits, scaled like [round_half_even_65] *)
Definition low_part (ds : list Z) : Z :=
  (top_three ds mod 2 ^ Z.log2 (top_digit ds 1)) * B32 ^ (zlength ds - 1) + low_digits ds * B64.

Lemma leading_65 ds : digits_ok ds -> last ds 0 <> 0 ->
  let X := top_three ds / 2 ^ Z.log2 (top_digit ds 1) in
  let e := 32 * (zlength ds - 1) + Z.log2 (top_digit ds 1) in
  Z.log2 (digits_value ds) = e /\ digits_value ds * 2 ^ 64 = X * 2 ^ e + low_part ds /\ 0 <= low_part ds < 2 ^ e.
Proof.
  intros Hok Hl X e. destruct (top_digits_spec ds Hok Hl) as (U1 & U2 & U3 & Hpos & EV & Hr & _).
  destruct (shift_left_eq _ U1 Hpos) as [_ Hld]. pose proof (leading_bits _ _ _ U1 U2 U3 Hpos) as [_ HX].
  fold (top_three ds) in HX. fold X in HX. unfold low_part. pose proof (zlength_pos ds (last_nonzero_nonempty _ Hl)) as HL.
  set (ld := Z.log2 (top_digit ds 1)) in *. assert (Hp : 0 < 2 ^ ld) by (apply Z.pow_pos_nonneg; lia).
  pose proof (Z.div_mod (top_three ds) (2 ^ ld) ltac:(lia)) as EW. fold X in EW.
  pose proof (Z.mod_pos_bound (top_three ds) (2 ^ ld) Hp) as Hw. set (w := top_three ds mod 2 ^ ld) in *.
  assert (Ee : 2 ^ e = 2 ^ ld * B32 ^ (zlength ds - 1)).
  { unfold e. rewrite Z.pow_add_r, Z.pow_mul_r by lia. change (2 ^ 32) with B32. ring. }
  pose proof (pow32_pos (zlength ds - 1) ltac:(lia)) as HB. set (b := B32 ^ (zlength ds - 1)) in *.
  assert (E : digits_value ds * 2 ^ 64 = X * 2 ^ e + (w * b + low_digits ds * B64)).
  { change (2 ^ 64) with B64. rewrite EV, Ee, EW. ring. }
  assert (Hlow : 0 <= w * b + low_digits ds * B64 < 2 ^ e) by (rewrite Ee; nia).
  split; [| auto]. assert (0 < 2 ^ e) by lia. apply Z.log2_unique; [unfold e; lia |].
  rewrite Z.pow_succ_r by (unfold e; lia). set (p := 2 ^ e) in *. set (V := digits_value ds) in *. clearbody p V.
  change (2 ^ 64) with B64 in E. split; nia.
Qed.

Lemma land_pow2 a n : 0 <= n -> (Z.land a (2 ^ n) =? 0) = negb (Z.testbit a n).
Proof.
  intros Hn. destruct (Z.testbit a n) eqn:E; cbn [negb].
  - apply Z.eqb_neq. intros H. apply (f_equal (fun z => Z.testbit z n)) in H.
    rewrite Z.land_spec, E, Z.pow2_bits_true, Z.bits_0 in H by lia. discriminate.
  - apply Z.eqb_eq, Z.bits_inj'. intros i Hi. rewrite Z.land_spec, Z.pow2_bits_eqb, Z.bits_0 by lia.
    destruct (Z.eqb_spec n i) as [<-|]; [now rewrite E | apply andb_false_r].
Qed.

Lemma odd_mod_2 a : Z.odd a = (a mod 2 =? 1).
Proof. rewrite Zmod_odd. now destruct (Z.odd a). Qed.

(** The two tests of the code on the bits around the rounding bit *)
Lemma rounding_tests X : 
  (Z.land (X - B64) rounding_bit =? 0) = (X mod 2 ^ 12 <? 2 ^ 11)
  /\ (Z.land (X - B64) (Z.shiftl rounding_bit 2 - 1) =? rounding_bit)
     = ((X mod 2 ^ 12 =? 2 ^ 11) && negb (Z.odd (X / 2 ^ 12)))
  /\ (X mod 2 ^ 13 =? 2 ^ 11) = ((X mod 2 ^ 12 =? 2 ^ 11) && negb (Z.odd (X / 2 ^ 12))).
Proof.
  change (Z.shiftl rounding_bit 2 - 1) with (2 ^ 13 - 1). change rounding_bit with (2 ^ 11).
  rewrite (land_ones' _ 13 (2 ^ 13 - 1)), land_pow2, Z.testbit_odd, Z.shiftr_div_pow2 by (reflexivity || lia).
  rewrite !odd_mod_2.
  splits; apply eq_true_iff_eq; rewrite ?andb_true_iff, ?negb_true_iff, ?Z.eqb_eq, ?Z.eqb_neq, ?Z.ltb_lt;
    change (2 ^ 11) with 2048; change (2 ^ 12) with 4096; change (2 ^ 13) with 8192; Z.div_mod_to_equations; lia.
Qed.

(** The digits below the first three are scanned exactly *)
Lemma existsb_low ds : digits_ok ds -> existsb (fun d => negb (d =? 0)) (skipn 3 (rev ds)) = negb (low_digits ds =? 0).
Proof.
  intros Hok. unfold low_digits. assert (Hr : digits_ok (rev (skipn 3 (rev ds)))).
  { unfold digits_ok in *. apply Forall_rev. apply Forall_rev in Hok. rewrite <- (firstn_skipn 3 (rev ds)) in Hok.
    apply Forall_app in Hok. apply Hok. }
  pose proof (digits_value_zero _ Hr) as Hz. rewrite forallb_rev in Hz.
  assert (E : forall l : list Z, existsb (fun d => negb (d =? 0)) l = negb (forallb (fun d => d =? 0) l)).
  { induction l as [|d l IH]; [reflexivity |]. cbn. rewrite IH. now destruct (d =? 0). }
  rewrite E. f_equal. apply eq_true_iff_eq. now rewrite <- Hz, Z.eqb_eq.
Qed.

(** The tie the code misjudges is the only case left out *)
Lemma no_hidden_tie ds : digits_ok ds -> last ds 0 <> 0 ->
  top_digit ds 1 = 1 \/ tie_beyond_64_bits (digits_value ds) = false ->
  (top_three ds / 2 ^ Z.log2 (top_digit ds 1)) mod 2 ^ 13 = 2 ^ 11 ->
  low_part ds = 0 \/ (top_digit ds 1 = 1 /\ 3 <= zlength ds).
Proof.
  intros Hok Hl H Hx. destruct (leading_65 ds Hok Hl) as (Ee & EV & Hlow).
  destruct (top_digits_spec ds Hok Hl) as (U1 & U2 & U3 & Hpos & _ & _ & Hr & L2 & L3).
  pose proof (zlength_pos ds (last_nonzero_nonempty _ Hl)) as HL.
  destruct (shift_left_eq _ U1 Hpos) as [_ Hld]. set (ld := Z.log2 (top_digit ds 1)) in *.
  destruct (Z.lt_ge_cases (zlength ds) 3) as [Hs|Hs].
  - left. destruct (L3 Hs) as [E3 Er]. unfold low_part, top_three. rewrite E3, Er. fold ld.
    replace (top_digit ds 1 * B64 + top_digit ds 2 * B32 + 0)
      with ((top_digit ds 1 * B32 + top_digit ds 2) * 2 ^ (32 - ld) * 2 ^ ld).
    + rewrite Z.mod_mul by (apply Z.pow_nonzero; lia). lia.
    + rewrite <- Z.mul_assoc, <- Z.pow_add_r by lia. replace (32 - ld + ld) with 32 by lia. change (2 ^ 32) with B32. ring.
  - destruct H as [H|H]; [now right |]. left. unfold tie_beyond_64_bits in H. rewrite Ee in H. cbv zeta in H.
    set (s := 32 * (zlength ds - 1) + ld - 64) in *. assert (Hs0 : 0 <= s) by lia.
    assert (Hps : 0 < 2 ^ s) by (apply Z.pow_pos_nonneg; lia).
    assert (E2 : 2 ^ (32 * (zlength ds - 1) + ld) = 2 ^ s * 2 ^ 64) by (rewrite <- Z.pow_add_r by lia; f_equal; lia).
    rewrite E2 in *. destruct (number_div_scaled _ _ (2 ^ s) (2 ^ 64) (low_part ds) Hps ltac:(lia) EV Hlow) as [Eq Em].
    rewrite Eq, Hx, Z.eqb_refl, andb_true_r in H.
    destruct (Z.ltb_spec 0 s); cbn [andb] in H; [apply negb_false_iff in H; zbool; lia |].
    assert (s = 0) as E0 by lia. rewrite E0 in *. change (2 ^ 0) with 1 in *. rewrite Z.mod_1_r in Em. lia.
Qed.

Lemma round_up_code ds : digits_ok ds -> last ds 0 <> 0 ->
  top_digit ds 1 = 1 \/ tie_beyond_64_bits (digits_value ds) = false ->
  let X := top_three ds / 2 ^ Z.log2 (top_digit ds 1) in
  to_number_round_up ds (X - B64) (32 - Z.log2 (top_digit ds 1)) = round_up_65 X (low_part ds).
Proof.
  intros Hok Hl H X. unfold to_number_round_up, round_up_65. destruct (rounding_tests X) as (T1 & T2 & T3). rewrite T1, T2.
  pose proof (no_hidden_tie ds Hok Hl H) as N. fold X in N. rewrite <- Z.eqb_eq, T3 in N.
  destruct (Z.ltb_spec (X mod 2 ^ 12) (2 ^ 11)).
  { rewrite (proj2 (Z.ltb_ge (2 ^ 11) _)), (proj2 (Z.eqb_neq _ (2 ^ 11))) by lia. reflexivity. }
  destruct (Z.eqb_spec (X mod 2 ^ 12) (2 ^ 11)) as [E|E]; cbn [andb].
  2: { rewrite (proj2 (Z.ltb_lt (2 ^ 11) _)) by lia. reflexivity. }
  rewrite E. change (2 ^ 11 <? 2 ^ 11) with false. cbn [orb andb] in *.
  destruct (Z.odd (X / 2 ^ 12)); cbn [negb orb] in *; [reflexivity |].
  rewrite existsb_low by assumption. destruct (top_digits_spec ds Hok Hl) as (_ & _ & _ & _ & _ & _ & Hr & _).
  pose proof (zlength_pos ds (last_nonzero_nonempty _ Hl)) as HL. pose proof (pow32_pos (zlength ds - 1) ltac:(lia)) as Hp.
  destruct (N eq_refl) as [E0|[E1 H3]].
  - assert (Hz : low_digits ds = 0).
    { unfold low_part in E0. pose proof (Z.mod_pos_bound (top_three ds) (2 ^ Z.log2 (top_digit ds 1))
        ltac:(apply Z.pow_pos_nonneg; [lia | apply Z.log2_nonneg])). nia. }
    rewrite E0, Hz. cbn. now destruct (_ && _).
  - rewrite E1. change (Z.log2 1) with 0. change (32 - 0 =? 32) with true. cbn [orb].
    unfold digits_size. rewrite (proj2 (Z.leb_le _ _)) by lia. cbn [andb]. f_equal.
    unfold low_part. rewrite E1. change (2 ^ Z.log2 1) with 1. rewrite Z.mod_1_r, Z.mul_0_l, Z.add_0_l.
    apply eq_true_iff_eq. rewrite !Z.eqb_eq. lia.
Qed.

(** ** Packing the result *)

Lemma number_create_fields (sign : bool) biased_exp fraction : 0 <= biased_exp < 2048 -> 0 <= fraction < 2 ^ 52 ->
  let b := ecma_number_create sign biased_exp fraction in
  is_u64 b /\ ecma_number_sign b = sign /\ ecma_number_biased_exp b = biased_exp /\ ecma_number_fraction b = fraction.
Proof.
  intros He Hf b.
  assert (Eb : b = (Z.b2z sign * 2048 + biased_exp) * 2 ^ 52 + fraction).
  { unfold b, ecma_number_create, ECMA_NUMBER_FRACTION_WIDTH. rewrite Z.shiftl_mul_pow2 by lia. unfold u64.
    rewrite (Z.mod_small (biased_exp * _)) by lia. rewrite lor_mul_low by lia.
    destruct sign; cbn [Z.b2z]; [| lia]. rewrite Z.lor_comm. change ECMA_NUMBER_SIGN_BIT with (1 * 2 ^ 63).
    rewrite lor_mul_low by lia. lia. }
  assert (Hb : is_u64 b) by (rewrite Eb; unfold is_u64; destruct sign; cbn [Z.b2z]; lia).
  destruct (number_fields b Hb) as (-> & -> & _). split; [assumption |]. rewrite Eb. split.
  - unfold ecma_number_sign. change ECMA_NUMBER_SIGN_BIT with (2 ^ 63). rewrite land_pow2, negb_involutive by lia.
    rewrite Z.testbit_odd, Z.shiftr_div_pow2, odd_mod_2 by lia.
    change (2 ^ 63) with (2048 * 2 ^ 52). change (2 ^ 52) with 4503599627370496 in *.
    destruct sign; cbn [Z.b2z]; [apply Z.eqb_eq | apply Z.eqb_neq]; Z.div_mod_to_equations; lia.
  - change (2 ^ 63) with (2048 * 2 ^ 52). change (2 ^ 52) with 4503599627370496 in *.
    destruct sign; cbn [Z.b2z]; split; Z.div_mod_to_equations; lia.
Qed.

(** [b] is the number nearest to the magnitude [n], with the sign [negative] *)
Definition number_nearest (n : Z) (negative : bool) (b : Z) : Prop :=
  is_u64 b /\ ecma_number_sign b = negative
  /\ (if round_half_even n <? 2 ^ 1024
      then number_finite b = true /\ number_magnitude b = round_half_even n * number_unit
      else ecma_number_is_infinity b = true).

(** Fraction and exponent after rounding *)
Lemma rounded_fields X low e : B64 <= X < 2 * B64 -> 0 <= e ->
  let up := round_up_65 X low in
  let fraction := Z.shiftr (if up then u64 (X - B64 + rounding_bit) else X - B64) (64 - ECMA_NUMBER_FRACTION_WIDTH) in
  let carry := Z.b2z (up && (fraction =? 0)) in
  0 <= fraction < 2 ^ 52
  /\ (2 ^ 52 + fraction) * 2 ^ (e + carry) = (X / 2 ^ 12 + Z.b2z up) * 2 ^ e.
Proof.
  intros HX He up fraction carry. unfold carry, fraction, rounding_bit, ECMA_NUMBER_FRACTION_WIDTH. clear carry fraction.
  change (64 - 52) with 12. change (Z.shiftl 1 (12 - 1)) with 2048. rewrite Z.shiftr_div_pow2 by lia.
  assert (Hup : up = true -> 2048 <= X mod 4096).
  { unfold up, round_up_65. change (2 ^ 11) with 2048. change (2 ^ 12) with 4096. intros Ht.
    apply orb_true_iff in Ht as [Ht|Ht]; zbool; lia. }
  clearbody up. change (2 ^ 12) with 4096. change (2 ^ 52) with 4503599627370496. destruct up; cbn [andb Z.b2z].
  - specialize (Hup eq_refl). destruct (Z.lt_ge_cases (X - B64 + 2048) B64) as [Hc|Hc].
    + unfold u64. rewrite (Z.mod_small (X - B64 + 2048)) by lia.
      assert (E : (X - B64 + 2048) / 4096 = X / 4096 + 1 - 4503599627370496) by (Z.div_mod_to_equations; lia).
      rewrite E. rewrite (proj2 (Z.eqb_neq _ 0)) by (Z.div_mod_to_equations; lia). cbn [Z.b2z]. rewrite Z.add_0_r.
      split; [Z.div_mod_to_equations; lia |]. f_equal. lia.
    + unfold u64. replace (X - B64 + 2048) with (X + 2048 - 2 * B64 + 1 * B64) by lia. rewrite Z.mod_add, Z.mod_small by lia.
      assert (E : (X + 2048 - 2 * B64) / 4096 = 0) by (Z.div_mod_to_equations; lia). rewrite E. cbn [Z.eqb Z.b2z].
      split; [lia |]. rewrite Z.pow_add_r by lia. change (2 ^ 1) with 2.
      assert (X / 4096 = 9007199254740991) as -> by (Z.div_mod_to_equations; lia). lia.
  - rewrite Z.add_0_r. split; [Z.div_mod_to_equations; lia |]. f_equal. Z.div_mod_to_equations; lia.
Qed.

Lemma unit_is : number_unit = 2 ^ 1074.
Proof. reflexivity. Qed.

Lemma infinity_fields (sign : bool) :
  is_u64 (ecma_number_make_infinity sign) /\ ecma_number_sign (ecma_number_make_infinity sign) = sign
  /\ ecma_number_is_infinity (ecma_number_make_infinity sign) = true.
Proof. destruct sign; (split; [split; vm_compute; congruence | split; reflexivity]). Qed.

(** Packing a rounded significand [M] with exponent [biased_exp] *)
Lemma nearest_packed n sign biased_exp fraction : 1 <= biased_exp -> 0 <= fraction < 2 ^ 52 ->
  (2 ^ 52 + fraction) * 2 ^ (biased_exp - 1) = round_half_even n * number_unit ->
  number_nearest n sign
    (if biased_exp <? Z.shiftl 1 ECMA_NUMBER_BIASED_EXP_WIDTH - 1 then ecma_number_create sign biased_exp fraction
     else ecma_number_make_infinity sign).
Proof.
  intros He Hf E. change (Z.shiftl 1 ECMA_NUMBER_BIASED_EXP_WIDTH - 1) with 2047. pose proof unit_pos as Hu.
  assert (Eu : 2 ^ 1024 * number_unit = 2 ^ 52 * 2 ^ 2046) by (rewrite unit_is, <- !Z.pow_add_r by lia; reflexivity).
  assert (Ez : 2 ^ 2046 = 2 * 2 ^ 2045) by (rewrite <- Z.pow_succ_r by lia; reflexivity).
  assert (Hp : 0 < 2 ^ 2045) by (apply Z.pow_pos_nonneg; lia). unfold number_nearest.
  set (big := 2 ^ 1024) in *. set (p2046 := 2 ^ 2046) in *. set (p2045 := 2 ^ 2045) in *.
  pose proof (Z.pow_pos_nonneg 2 (biased_exp - 1) ltac:(lia) ltac:(lia)) as Hpe.
  destruct (Z.ltb_spec biased_exp 2047) as [H|H].
  - destruct (number_create_fields sign biased_exp fraction ltac:(lia) Hf) as (B1 & B2 & B3 & B4).
    assert (Hle : 2 ^ (biased_exp - 1) <= p2045) by (apply Z.pow_le_mono_r; lia).
    assert (Hlt : round_half_even n < big).
    { apply (Z.mul_lt_mono_pos_r number_unit); [assumption |]. rewrite <- E, Eu, Ez. clearbody big p2046 p2045. nia. }
    rewrite (proj2 (Z.ltb_lt _ _) Hlt). splits; try assumption.
    + unfold number_finite. rewrite B3. now apply Z.ltb_lt.
    + unfold number_magnitude. rewrite B3, B4, (proj2 (Z.eqb_neq biased_exp 0)) by lia. exact E.
  - assert (Hle : p2046 <= 2 ^ (biased_exp - 1)) by (apply Z.pow_le_mono_r; lia).
    assert (Hge : big <= round_half_even n).
    { apply (Z.mul_le_mono_pos_r _ _ number_unit); [assumption |]. rewrite <- E, Eu. clearbody big p2046 p2045. nia. }
    rewrite (proj2 (Z.ltb_ge _ _) Hge). apply infinity_fields.
Qed.

Definition to_number_outcome (x : Z) (o : number_outcome) : Prop :=
  match o with
  | NUM_INTEGER value => value = x
  | NUM_NUMBER binary => number_nearest (Z.abs x) (x <? 0) binary
  end.

(** The BigInts ecma_bigint_to_number rounds correctly: all but those just above
    a tie whose excess lies beyond the first 65 bits, unless the leading digit is 1 *)
Definition rounds_correctly (v : bigint_value) : bool :=
  match v with
  | ECMA_BIGINT_ZERO => true
  | BIGINT p => (top_digit (bigint_digits p) 1 =? 1) || negb (tie_beyond_64_bits (big_uint_value p))
  end.

Lemma bigint_to_number v : bigint_ok v -> rounds_correctly v = true -> to_number_outcome (bigint_to_Z v) (ecma_bigint_to_number v).
Proof.
  intros Hv Hr. destruct v as [|p]; [reflexivity |]. cbn [bigint_ok bigint_to_Z rounds_correctly] in *.
  pose proof Hv as [W _]. unfold ecma_bigint_to_number. rewrite (wf_size _ W).
  assert (Ed : firstn (in_digits (digits_size (bigint_digits p))) (bigint_digits p) = bigint_digits p).
  { apply firstn_all2. unfold in_digits, digits_size, zlength. Z.div_mod_to_equations; lia. }
  rewrite Ed. set (ds := bigint_digits p) in *. pose proof (wf_digits _ W) as Hok. pose proof (wf_last _ W) as Hl. fold ds in Hok, Hl.
  destruct (top_digits_spec ds Hok Hl) as (U1 & U2 & U3 & Hpos & EV & _ & _ & L2 & L3).
  pose proof (zlength_pos ds (last_nonzero_nonempty _ Hl)) as HL. pose proof (wf_max _ W) as Hmax. fold ds in Hmax.
  unfold digits_size, ECMA_BIGINT_MAX_SIZE in *. cbv zeta.
  destruct (_ && _) eqn:Es.
  - apply andb_true_iff in Es as [Es _]. zbool. assert (E1 : zlength ds = 1) by lia.
    rewrite E1 in *. destruct (L3 ltac:(lia)) as [E3 E4]. unfold top_three in EV. rewrite L2, E3, E4 in EV by lia.
    change (B32 ^ (1 - 1)) with 1 in EV. unfold bigint_int, big_uint_value. fold ds.
    cbn [to_number_outcome]. destruct (sign_of p =? 0); lia.
  - clear Es. rewrite leading_fraction_spec by assumption. destruct (leading_65 ds Hok Hl) as (Ee & E65 & Hlow).
    destruct (shift_left_eq _ U1 Hpos) as [_ Hld]. pose proof (leading_bits _ _ _ U1 U2 U3 Hpos) as [_ HX]. fold (top_three ds) in HX.
    assert (Hr' : top_digit ds 1 = 1 \/ tie_beyond_64_bits (digits_value ds) = false).
    { apply orb_true_iff in Hr as [Hr|Hr]; [left | right]; zbool; assumption. }
    rewrite (round_up_code ds Hok Hl Hr'). set (X := top_three ds / 2 ^ Z.log2 (top_digit ds 1)) in *.
    set (ld := Z.log2 (top_digit ds 1)) in *. set (e := 32 * (zlength ds - 1) + ld) in *.
    assert (Hpv : 0 < digits_value ds) by now apply digits_value_pos.
    assert (Habs : Z.abs (bigint_int p) = digits_value ds) by (unfold bigint_int, big_uint_value; fold ds; destruct (sign_of p =? 0); lia).
    assert (Hsgn : (bigint_int p <? 0) = negb (sign_of p =? 0)).
    { unfold bigint_int, big_uint_value. fold ds. destruct (sign_of p =? 0); cbn [negb]; [apply Z.ltb_ge | apply Z.ltb_lt]; lia. }
    cbn [to_number_outcome]. rewrite Habs, Hsgn. change exponent_bias with 1023.
    replace (1023 + (4 * zlength ds * 8 - (32 - ld))) with (1023 + e) by (unfold e; lia).
    pose proof (rounded_fields X (low_part ds) (1022 + e) HX ltac:(unfold e; lia)) as [Hf EM]. cbv zeta in Hf, EM.
    pose proof (round_half_even_65 (digits_value ds) X (low_part ds) Hpv) as RN. rewrite Ee in RN. specialize (RN E65 Hlow).
    set (fraction := Z.shiftr _ _) in *. set (up := round_up_65 X (low_part ds)) in *.
    assert (He : 0 <= e < 1000000) by (unfold e; lia). rewrite (u32_small (1023 + e)) by (unfold is_u32; lia).
    replace (if up && (fraction =? 0) then u32 (1023 + e + 1) else 1023 + e) with (1023 + e + Z.b2z (up && (fraction =? 0))).
    2: { destruct (up && (fraction =? 0)); cbn [Z.b2z]; [rewrite u32_small by (unfold is_u32; lia)|]; lia. }
    apply nearest_packed; [destruct (up && _); cbn [Z.b2z]; lia | assumption |].
    replace (1023 + e + Z.b2z (up && (fraction =? 0)) - 1) with (1022 + e + Z.b2z (up && (fraction =? 0))) by lia.
    rewrite EM, unit_is. clear - RN He.
    replace (1022 + e) with (e + 12 + 1010) by lia. rewrite Z.pow_add_r, Z.mul_assoc, RN by lia.
    rewrite <- Z.mul_assoc, <- Z.pow_add_r by lia. reflexivity.
Qed.

(** ** Properties *)

(** ecma_bigint_number_to_bigint accepts exactly the finite numbers without
    a fraction and delivers the integer they denote, for every exponent and for
    subnormals and signed zeros; infinities, NaNs and fractions raise their
    range errors. *)
Theorem ecma_bigint_number_to_bigint_correct {HA : HeapAlloc} number : is_u64 number ->
  wp (ecma_bigint_number_to_bigint number) (number_to_bigint_outcome number).
Proof. apply wp_number_to_bigint. Qed.

(** ecma_bigint_compare_to_number and ecma_bigint_is_equal_to_number order
    BigInts and numbers by their exact values, without rounding either side:
    fractions, magnitudes beyond 2^53, both zeros and infinities included. *)
Theorem ecma_bigint_number_order_correct left number : bigint_ok left -> is_u64 number ->
  (ecma_number_is_nan number = false ->
   ecma_bigint_compare_to_number left number =
     if ecma_number_is_infinity number then (if ecma_number_sign number then 1 else -1)
     else Z.sgn (bigint_to_Z left * number_unit - number_scaled number))
  /\ ecma_bigint_is_equal_to_number left number =
     number_finite number && (bigint_to_Z left * number_unit =? number_scaled number).
Proof. intros Hl Hn. split; [now apply bigint_compare_number | now apply bigint_equal_number]. Qed.

(** C35: ecma_bigint_to_number delivers the nearest number, ties to even, and the
    infinities beyond the largest finite number, for every BigInt that is not
    just above a tie by bits beyond the first 65. *)
Theorem ecma_bigint_to_number_correct v : bigint_ok v -> rounds_correctly v = true ->
  to_number_outcome (bigint_to_Z v) (ecma_bigint_to_number v).
Proof. apply bigint_to_number. Qed.

(** The remaining BigInts can be rounded the wrong way: 2^95 + 2^42 + 1 lies
    just above the middle of two numbers, but the mask that looks for a set bit
    below the rounding bit selects the wrong bits of the third digit, and the
    result is 2^95 instead of 2^95 + 2^43. *)
Theorem ecma_bigint_to_number_misrounds :
  let v := bigint_of false [1; 1024; 2 ^ 31] in
  bigint_to_Z v = 2 ^ 95 + 2 ^ 42 + 1
  /\ round_half_even (bigint_to_Z v) = 2 ^ 95 + 2 ^ 43
  /\ ecma_bigint_to_number v = NUM_NUMBER (ecma_number_create false (1023 + 95) 0)
  /\ number_scaled (ecma_number_create false (1023 + 95) 0) = 2 ^ 95 * number_unit.
Proof. cbv zeta; splits; vm_compute; reflexivity. Qed.

Lemma ecma_bigint_number_to_bigint_witness :
  @wp (CounterHeap true) _ (@ecma_bigint_number_to_bigint (CounterHeap true) (ecma_number_create true (1023 + 70) 0))
    (@number_to_bigint_outcome (CounterHeap true) (ecma_number_create true (1023 + 70) 0)).
Proof.
  apply (@ecma_bigint_number_to_bigint_correct (CounterHeap true)).
  split; vm_compute; congruence.
Defined.

Lemma ecma_bigint_number_order_witness :
  ecma_bigint_compare_to_number (bigint_of true [5]) (ecma_number_create true (1023 + 2) (2 ^ 51)) = 1
  /\ ecma_bigint_is_equal_to_number (bigint_of true [5]) (ecma_number_create true (1023 + 2) (2 ^ 50)) = true.
Proof.
  split.
  - refine (eq_trans (proj1 (ecma_bigint_number_order_correct (bigint_of true [5]) (ecma_number_create true (1023 + 2) (2 ^ 51)) _ _) _) _);
      [bigint_wf_of | split; vm_compute; congruence | vm_compute; reflexivity | vm_compute; reflexivity].
  - refine (eq_trans (proj2 (ecma_bigint_number_order_correct (bigint_of true [5]) (ecma_number_create true (1023 + 2) (2 ^ 50)) _ _)) _);
      [bigint_wf_of | split; vm_compute; congruence | vm_compute; reflexivity].
Defined.

Lemma ecma_bigint_to_number_witness :
  to_number_outcome (2 ^ 95 + 2 ^ 42) (ecma_bigint_to_number (bigint_of false [0; 1024; 2 ^ 31])).
Proof.
  apply (ecma_bigint_to_number_correct (bigint_of false [0; 1024; 2 ^ 31])); [bigint_wf_of | vm_compute; reflexivity].
Defined.
