(* ===== verification/LitStrings.v ===== *)
(** * String encodings: src/jjs-core/lit/lit-strings.c

    Strings are byte lists; a pointer into a string is the rest of the list, and
    a read beyond the end of the list is [None].  The engine stores strings in
    CESU-8, where every UTF-16 code unit is encoded by itself in one to three
    bytes, and converts to UTF-8 at its boundary.  The theorems relate the byte
    strings to the sequences of code units and code points they encode. *)
From Stdlib Require Import ZArith List Lia Bool.
From S2P Require Import Prelude LitChars.
Import ListNotations.
#[local] Open Scope Z_scope.

Definition LIT_UTF16_CODE_UNIT_MAX : Z := 65535.
Definition LIT_UTF16_FIRST_SURROGATE_CODE_POINT : Z := 65536.
Definition LIT_UTF16_HIGH_SURROGATE_MIN : Z := 55296.
Definition LIT_UTF16_HIGH_SURROGATE_MAX : Z := 56319.
Definition LIT_UTF16_LOW_SURROGATE_MIN : Z := 56320.
Definition LIT_UTF16_LOW_SURROGATE_MAX : Z := 57343.
Definition LIT_UTF16_BITS_IN_SURROGATE : Z := 10.
Definition LIT_UTF8_BITS_IN_EXTRA_BYTES : Z := 6.
Definition LIT_UTF8_1_BYTE_CODE_POINT_MAX : Z := 127.
Definition LIT_UTF8_2_BYTE_CODE_POINT_MAX : Z := 2047.
Definition LIT_UTF8_3_BYTE_CODE_POINT_MAX : Z := 65535.

(** Tests of a byte against the markers of lit-strings.h *)
Definition is_1_byte (c : Z) : bool := Z.land c 128 =? 0.
Definition is_2_byte (c : Z) : bool := Z.land c 224 =? 192.
Definition is_3_byte (c : Z) : bool := Z.land c 240 =? 224.
Definition is_extra_byte (c : Z) : bool := Z.land c 192 =? 128.

(** ** Validation *)

(** The surrogate pair a strict validation rejects, after the first half was read *)
Definition low_surrogate_follows (idx : list Z) : bool :=
  match idx with
  | b0 :: b1 :: _ :: _ => (b0 =? 237) && (176 <=? b1) && (b1 <=? 191)
  | _ => false
  end.

Fixpoint lit_is_valid_utf8_string (utf8_buf : list Z) (is_strict : bool) : bool :=
  match utf8_buf with
  | [] => true
  | first_byte :: idx1 =>
      if first_byte <? 128 then lit_is_valid_utf8_string idx1 is_strict
      else if first_byte <? 194 then false
      else
        match idx1 with
        | [] => false
        | second_byte :: idx2 =>
            if negb (is_extra_byte second_byte) then false
            else if first_byte <? 224 then lit_is_valid_utf8_string idx2 is_strict
            else
              match idx2 with
              | [] => false
              | third_byte :: idx3 =>
                  if negb (is_extra_byte third_byte) then false
                  else if first_byte <? 240 then
                    if (first_byte =? 224) && (Z.land second_byte 224 =? 128) then false
                    else if is_strict && (first_byte =? 237) && (160 <=? second_byte) && (second_byte <=? 175)
                            && low_surrogate_follows idx3 then false
                    else lit_is_valid_utf8_string idx3 is_strict
                  else
                    match idx3 with
                    | [] => false
                    | fourth_byte :: idx4 =>
                        if (244 <? first_byte)
                           || ((first_byte =? 240) && (second_byte <=? 128))
                           || ((first_byte =? 244) && (143 <? second_byte))
                           || negb (is_extra_byte fourth_byte) then false
                        else lit_is_valid_utf8_string idx4 is_strict
                    end
              end
        end
  end.

(** The loop over the continuation bytes in lit_is_valid_cesu8_string: the code
    point and the rest of the string, [None] for an invalid byte *)
Fixpoint cesu8_extra_bytes (count : nat) (code_point : Z) (buf : list Z) : option (Z * list Z) :=
  match count with
  | O => Some (code_point, buf)
  | S count' =>
      match buf with
      | [] => None (* cesu-8 string breaks in the middle *)
      | c :: buf' =>
          if is_extra_byte c then
            cesu8_extra_bytes count' (Z.lor (u32 (Z.shiftl code_point LIT_UTF8_BITS_IN_EXTRA_BYTES)) (Z.land c 63)) buf'
          else None
      end
  end.

Fixpoint is_valid_cesu8_loop (fuel : nat) (buf : list Z) : bool :=
  match fuel, buf with
  | _, [] => true
  | O, _ => false
  | S fuel', c :: idx =>
      if is_1_byte c then is_valid_cesu8_loop fuel' idx
      else
        let continue count min_code_point code_point :=
          match cesu8_extra_bytes count code_point idx with
          | None => false
          | Some (code_point, idx') =>
              if code_point <? min_code_point then false else is_valid_cesu8_loop fuel' idx'
          end in
        if is_2_byte c then continue 1%nat 128 (Z.land c 31)
        else if is_3_byte c then continue 2%nat 2048 (Z.land c 15)
        else false
  end.

Definition lit_is_valid_cesu8_string (cesu8_buf : list Z) : bool :=
  is_valid_cesu8_loop (length cesu8_buf) cesu8_buf.

(** ** Surrogates *)

Definition lit_is_code_point_utf16_low_surrogate (code_point : Z) : bool :=
  (LIT_UTF16_LOW_SURROGATE_MIN <=? code_point) && (code_point <=? LIT_UTF16_LOW_SURROGATE_MAX).

Definition lit_is_code_point_utf16_high_surrogate (code_point : Z) : bool :=
  (LIT_UTF16_HIGH_SURROGATE_MIN <=? code_point) && (code_point <=? LIT_UTF16_HIGH_SURROGATE_MAX).

Definition convert_code_point_to_low_surrogate (code_point : Z) : Z :=
  u16 (Z.lor LIT_UTF16_LOW_SURROGATE_MIN (u16 (Z.land code_point 1023))).

Definition convert_code_point_to_high_surrogate (code_point : Z) : Z :=
  u16 (Z.lor LIT_UTF16_HIGH_SURROGATE_MIN
         (u16 (Z.shiftr (u32 (code_point - LIT_UTF16_FIRST_SURROGATE_CODE_POINT)) LIT_UTF16_BITS_IN_SURROGATE))).

(** The code units written to cu_p *)
Definition lit_utf16_encode_code_point (cp : Z) : list Z :=
  if cp <=? LIT_UTF16_CODE_UNIT_MAX then [u16 cp]
  else [convert_code_point_to_high_surrogate cp; convert_code_point_to_low_surrogate cp].

Definition lit_convert_surrogate_pair_to_code_point (high_surrogate low_surrogate : Z) : Z :=
  let code_point := u16 (high_surrogate - LIT_UTF16_HIGH_SURROGATE_MIN) in
  let code_point := u32 (Z.shiftl code_point LIT_UTF16_BITS_IN_SURROGATE) in
  let code_point := u32 (code_point + LIT_UTF16_FIRST_SURROGATE_CODE_POINT) in
  Z.lor code_point (u16 (low_surrogate - LIT_UTF16_LOW_SURROGATE_MIN)).

(** ** Encoding: the bytes written to the buffer *)

Definition lit_code_unit_to_utf8 (code_unit : Z) : list Z :=
  if code_unit <=? LIT_UTF8_1_BYTE_CODE_POINT_MAX then [u8 code_unit]
  else if code_unit <=? LIT_UTF8_2_BYTE_CODE_POINT_MAX then
    let second_byte_bits := u8 (Z.land code_unit 63) in
    let code_unit_bits := Z.shiftr code_unit LIT_UTF8_BITS_IN_EXTRA_BYTES in
    let first_byte_bits := u8 (Z.land code_unit_bits 31) in
    [Z.lor 192 first_byte_bits; Z.lor 128 second_byte_bits]
  else
    let third_byte_bits := u8 (Z.land code_unit 63) in
    let code_unit_bits := Z.shiftr code_unit LIT_UTF8_BITS_IN_EXTRA_BYTES in
    let second_byte_bits := u8 (Z.land code_unit_bits 63) in
    let code_unit_bits := Z.shiftr code_unit_bits LIT_UTF8_BITS_IN_EXTRA_BYTES in
    let first_byte_bits := u8 (Z.land code_unit_bits 15) in
    [Z.lor 224 first_byte_bits; Z.lor 128 second_byte_bits; Z.lor 128 third_byte_bits].

Definition lit_code_point_to_cesu8 (code_point : Z) : list Z :=
  if code_point <=? LIT_UTF16_CODE_UNIT_MAX then lit_code_unit_to_utf8 (u16 code_point)
  else
    lit_code_unit_to_utf8 (convert_code_point_to_high_surrogate code_point)
    ++ lit_code_unit_to_utf8 (convert_code_point_to_low_surrogate code_point).

Definition lit_code_point_to_utf8 (code_point : Z) : list Z :=
  if code_point <=? LIT_UTF8_1_BYTE_CODE_POINT_MAX then [u8 code_point]
  else if code_point <=? LIT_UTF8_2_BYTE_CODE_POINT_MAX then
    let second_byte_bits := u8 (Z.land code_point 63) in
    let code_point_bits := Z.shiftr code_point LIT_UTF8_BITS_IN_EXTRA_BYTES in
    let first_byte_bits := u8 (Z.land code_point_bits 31) in
    [Z.lor 192 first_byte_bits; Z.lor 128 second_byte_bits]
  else if code_point <=? LIT_UTF8_3_BYTE_CODE_POINT_MAX then
    let third_byte_bits := u8 (Z.land code_point 63) in
    let code_point_bits := Z.shiftr code_point LIT_UTF8_BITS_IN_EXTRA_BYTES in
    let second_byte_bits := u8 (Z.land code_point_bits 63) in
    let code_point_bits := Z.shiftr code_point_bits LIT_UTF8_BITS_IN_EXTRA_BYTES in
    let first_byte_bits := u8 (Z.land code_point_bits 15) in
    [Z.lor 224 first_byte_bits; Z.lor 128 second_byte_bits; Z.lor 128 third_byte_bits]
  else
    let fourth_byte_bits := u8 (Z.land code_point 63) in
    let code_point_bits := Z.shiftr code_point LIT_UTF8_BITS_IN_EXTRA_BYTES in
    let third_byte_bits := u8 (Z.land code_point_bits 63) in
    let code_point_bits := Z.shiftr code_point_bits LIT_UTF8_BITS_IN_EXTRA_BYTES in
    let second_byte_bits := u8 (Z.land code_point_bits 63) in
    let code_point_bits := Z.shiftr code_point_bits LIT_UTF8_BITS_IN_EXTRA_BYTES in
    let first_byte_bits := u8 (Z.land code_point_bits 7) in
    [Z.lor 240 first_byte_bits; Z.lor 128 second_byte_bits; Z.lor 128 third_byte_bits; Z.lor 128 fourth_byte_bits].

(** ** Decoding *)

(** The loops that add [count] continuation bytes to [ret]; [None] for a read
    beyond the end *)
Fixpoint read_extra_bytes (count : nat) (ret : Z) (buf : list Z) : option Z :=
  match count with
  | O => Some ret
  | S count' =>
      match buf with
      | [] => None
      | b :: buf' =>
          read_extra_bytes count' (Z.lor (u32 (Z.shiftl ret LIT_UTF8_BITS_IN_EXTRA_BYTES)) (Z.land b 63)) buf'
      end
  end.

(** Number of bytes and code point *)
Definition lit_read_code_point_from_utf8 (buf : list Z) : option (Z * Z) :=
  match buf with
  | [] => None
  | c :: rest =>
      if is_1_byte c then Some (1, Z.land c 127)
      else
        let (bytes_count, ret) :=
          if is_2_byte c then (2, Z.land c 31) else if is_3_byte c then (3, Z.land c 15) else (4, Z.land c 7) in
        option_map (fun code_point => (bytes_count, code_point)) (read_extra_bytes (Z.to_nat (bytes_count - 1)) ret rest)
  end.

(** Number of bytes and code unit, [None] for the code unit when it is not
    written because the sequence does not end before end_p; [available] is
    end_p - buf_p *)
Definition lit_read_code_unit_from_cesu8_safe (buf : list Z) (available : Z) : option (Z * option Z) :=
  match buf with
  | [] => None
  | c :: rest =>
      if is_1_byte c then Some (1, Some (u16 (Z.land c 127)))
      else
        let (bytes_count, ret) := if is_2_byte c then (2, Z.land c 31) else (3, Z.land c 15) in
        if available <? bytes_count then Some (0, None)
        else option_map (fun ret => (bytes_count, Some (u16 ret))) (read_extra_bytes (Z.to_nat (bytes_count - 1)) ret rest)
  end.

(** The caller has done the bounds checking: end_p is buf_p + 3 *)
Definition lit_read_code_unit_from_cesu8 (buf : list Z) : option (Z * Z) :=
  match lit_read_code_unit_from_cesu8_safe buf 3 with
  | Some (bytes_count, Some code_unit) => Some (bytes_count, code_unit)
  | _ => None
  end.

(** advance and out, [None] where the function returns false *)
Definition lit_peek_wchar_from_cesu8 (buf : list Z) (index : Z) : option (Z * Z) :=
  match skipn (Z.to_nat index) buf with
  | [] => None
  | c :: rest =>
      if is_1_byte c then Some (1, u16 (Z.land c 127))
      else
        let continue bytes_count ret :=
          if zlength buf <? index + bytes_count then None
          else
            match read_extra_bytes (Z.to_nat (bytes_count - 1)) ret rest with
            | None => None
            | Some ret => if LIT_UTF16_CODE_UNIT_MAX <? ret then None else Some (bytes_count, u16 ret)
            end in
        if is_2_byte c then continue 2 (Z.land c 31)
        else if is_3_byte c then continue 3 (Z.land c 15)
        else None
  end.

(** buf_p + size *)
Definition advance (size : Z) (buf : list Z) : list Z := skipn (Z.to_nat size) buf.

Definition lit_read_code_point_from_cesu8 (buf : list Z) : option (Z * Z) :=
  match lit_read_code_unit_from_cesu8 buf with
  | None => None
  | Some (size, code_unit) =>
      if lit_is_code_point_utf16_high_surrogate code_unit then
        let buf := advance size buf in
        match buf with
        | [] => Some (size, code_unit)
        | _ =>
            match lit_read_code_unit_from_cesu8 buf with
            | None => None
            | Some (next_size, next_code_unit) =>
                if lit_is_code_point_utf16_low_surrogate next_code_unit then
                  Some (size + next_size, lit_convert_surrogate_pair_to_code_point code_unit next_code_unit)
                else Some (size, code_unit)
            end
        end
      else Some (size, code_unit)
  end.

Definition lit_get_unicode_char_size_by_utf8_first_byte (first_byte : Z) : Z :=
  if is_1_byte first_byte then 1 else if is_2_byte first_byte then 2 else 3.

(** A pointer that moves backwards: the bytes before it, last first.
    lit_utf8_decr returns the bytes it moved over and the bytes before. *)
Fixpoint lit_utf8_decr (before : list Z) (passed : list Z) : option (list Z * list Z) :=
  match before with
  | [] => None
  | c :: before' =>
      if is_extra_byte c then lit_utf8_decr before' (c :: passed) else Some (c :: passed, before')
  end.

(** Size and code unit; [before] is reversed, [after] is what buf_p points to *)
Definition lit_read_prev_code_unit_from_utf8 (before after : list Z) : option (Z * Z) :=
  match lit_utf8_decr before [] with
  | None => None
  | Some (passed, _) => lit_read_code_unit_from_cesu8 (passed ++ after)
  end.

(** ** Loops over strings *)

Fixpoint string_length_loop (fuel : nat) (buf : list Z) (length : Z) : option Z :=
  match buf, fuel with
  | [], _ => Some length
  | _, O => None
  | c :: _, S fuel' =>
      string_length_loop fuel' (advance (lit_get_unicode_char_size_by_utf8_first_byte c) buf) (length + 1)
  end.

Definition lit_utf8_string_length (utf8_buf : list Z) : option Z := string_length_loop (length utf8_buf) utf8_buf 0.

(** The loops of lit_get_utf8_size_of_cesu8_string and
    lit_get_utf8_length_of_cesu8_string *)
Fixpoint utf8_size_loop (fuel : nat) (buf : list Z) (prev_ch utf8_buf_size : Z) : option Z :=
  match buf, fuel with
  | [], _ => Some utf8_buf_size
  | _, O => None
  | _, S fuel' =>
      match lit_read_code_unit_from_cesu8 buf with
      | None => None
      | Some (size, ch) =>
          utf8_size_loop fuel' (advance size buf) ch
            (if lit_is_code_point_utf16_low_surrogate ch && lit_is_code_point_utf16_high_surrogate prev_ch
             then utf8_buf_size - 2 else utf8_buf_size)
      end
  end.

Definition lit_get_utf8_size_of_cesu8_string (cesu8_buf : list Z) : option Z :=
  utf8_size_loop (length cesu8_buf) cesu8_buf 0 (zlength cesu8_buf).

Fixpoint utf8_length_loop (fuel : nat) (buf : list Z) (prev_ch utf8_length : Z) : option Z :=
  match buf, fuel with
  | [], _ => Some utf8_length
  | _, O => None
  | _, S fuel' =>
      match lit_read_code_unit_from_cesu8 buf with
      | None => None
      | Some (size, ch) =>
          utf8_length_loop fuel' (advance size buf) ch
            (if negb (lit_is_code_point_utf16_low_surrogate ch) || negb (lit_is_code_point_utf16_high_surrogate prev_ch)
             then utf8_length + 1 else utf8_length)
      end
  end.

Definition lit_get_utf8_length_of_cesu8_string (cesu8_buf : list Z) : option Z :=
  utf8_length_loop (length cesu8_buf) cesu8_buf 0 0.

(** codepoint of a surrogate pair in the utf-16 functions *)
Definition utf16_pair (high low : Z) : Z :=
  u32 (u32 (u32 (Z.shiftl (Z.land high 1023) 10) + Z.land low 1023) + 65536).

(** The loop of lit_utf16_as_cesu8_measure: character_count and cesu8_size *)
Fixpoint utf16_measure_loop (str : list Z) (c b : Z) : Z * Z :=
  match str with
  | [] => (c, b)
  | ch :: rest =>
      if lit_is_code_point_utf16_high_surrogate ch then
        match rest with
        | next :: rest' =>
            if negb (lit_is_code_point_utf16_low_surrogate next) then
              utf16_measure_loop rest (c + 1) (b + zlength (lit_code_point_to_cesu8 ch))
            else utf16_measure_loop rest' (c + 1) (b + zlength (lit_code_point_to_cesu8 (utf16_pair ch next)))
        | [] => utf16_measure_loop rest (c + 1) (b + zlength (lit_code_point_to_cesu8 ch))
        end
      else utf16_measure_loop rest (c + 1) (b + zlength (lit_code_point_to_cesu8 ch))
  end.

Definition lit_utf16_as_cesu8_measure (str : list Z) : Z * Z := utf16_measure_loop str 0 0.

(** memcpy of one character when it fits *)
Definition append_fitting (cesu8 : list Z) (cesu8_size : Z) (buf : list Z) : list Z :=
  if negb (zlength buf =? 0) && (zlength cesu8 + zlength buf <=? cesu8_size) then cesu8 ++ buf else cesu8.

Fixpoint utf16_convert_loop (str cesu8 : list Z) (cesu8_size : Z) : list Z :=
  match str with
  | [] => cesu8
  | ch :: rest =>
      if lit_is_code_point_utf16_high_surrogate ch then
        match rest with
        | next :: rest' =>
            if negb (lit_is_code_point_utf16_low_surrogate next) then
              utf16_convert_loop rest (append_fitting cesu8 cesu8_size (lit_code_point_to_cesu8 ch)) cesu8_size
            else
              utf16_convert_loop rest' (append_fitting cesu8 cesu8_size (lit_code_point_to_cesu8 (utf16_pair ch next))) cesu8_size
        | [] => utf16_convert_loop rest (append_fitting cesu8 cesu8_size (lit_code_point_to_cesu8 ch)) cesu8_size
        end
      else utf16_convert_loop rest (append_fitting cesu8 cesu8_size (lit_code_point_to_cesu8 ch)) cesu8_size
  end.

Definition lit_convert_utf16_string_to_cesu8_string (str : list Z) (cesu8_size : Z) : list Z :=
  utf16_convert_loop str [] cesu8_size.

Definition lit_utf8_string_hash_combine (hash_basis : Z) (utf8_buf : list Z) : Z :=
  fold_left (fun hash b => u32 (Z.lxor hash b * 16777619)) utf8_buf hash_basis.

Definition lit_utf8_string_calc_hash (utf8_buf : list Z) : Z := lit_utf8_string_hash_combine 2166136261 utf8_buf.

Fixpoint lit_utf8_string_code_unit_at (utf8_buf : list Z) (code_unit_offset : nat) : option Z :=
  match lit_read_code_unit_from_cesu8 utf8_buf with
  | None => None
  | Some (size, code_unit) =>
      match code_unit_offset with
      | O => Some code_unit
      | S offset' => lit_utf8_string_code_unit_at (advance size utf8_buf) offset'
      end
  end.

(** The bytes written; the loop ends when the next character does not fit *)
Fixpoint cesu8_to_utf8_loop (fuel : nat) (cesu8 utf8 : list Z) (utf8_size : Z) : option (list Z) :=
  match cesu8, fuel with
  | [], _ => Some utf8
  | _, O => None
  | _, S fuel' =>
      match lit_read_code_point_from_cesu8 cesu8 with
      | None => None
      | Some (read_size, cp) =>
          let encoded_size := if LIT_UTF16_FIRST_SURROGATE_CODE_POINT <=? cp then 4 else read_size in
          if utf8_size <? zlength utf8 + encoded_size then Some utf8
          else
            let bytes :=
              if LIT_UTF16_FIRST_SURROGATE_CODE_POINT <=? cp then lit_code_point_to_utf8 cp
              else firstn (Z.to_nat encoded_size) cesu8 in
            cesu8_to_utf8_loop fuel' (advance read_size cesu8) (utf8 ++ bytes) utf8_size
      end
  end.

(** The bytes written and the returned count, which passes through a byte *)
Definition lit_convert_cesu8_string_to_utf8_string (cesu8 : list Z) (utf8_size : Z) : option (list Z * Z) :=
  option_map (fun utf8 => (utf8, u8 (zlength utf8))) (cesu8_to_utf8_loop (length cesu8) cesu8 [] utf8_size).

Fixpoint compare_relational_loop (fuel : nat) (string1 string2 : list Z) : option bool :=
  match string1, string2, fuel with
  | [], _ :: _, _ => Some true
  | [], [], _ => Some false
  | _ :: _, [], _ => Some false
  | _, _, O => None
  | _, _, S fuel' =>
      match lit_read_code_unit_from_cesu8 string1, lit_read_code_unit_from_cesu8 string2 with
      | Some (size1, ch1), Some (size2, ch2) =>
          if ch1 <? ch2 then Some true
          else if ch2 <? ch1 then Some false
          else compare_relational_loop fuel' (advance size1 string1) (advance size2 string2)
      | _, _ => None
      end
  end.

Definition lit_compare_utf8_strings_relational (string1 string2 : list Z) : option bool :=
  compare_relational_loop (length string1) string1 string2.

(** ** ecma-helpers-string.c: trimming *)

Fixpoint trim_front_loop (fuel : nat) (start : list Z) : option (list Z) :=
  match start, fuel with
  | [], _ => Some []
  | _, O => None
  | _, S fuel' =>
      match lit_read_code_unit_from_cesu8 start with
      | None => None
      | Some (read_size, ch) =>
          if negb (lit_char_is_white_space ch) then Some start else trim_front_loop fuel' (advance read_size start)
      end
  end.

Definition ecma_string_trim_front (start : list Z) : option (list Z) := trim_front_loop (length start) start.

(** [before] is the string up to end_p, reversed *)
Fixpoint trim_back_loop (fuel : nat) (before : list Z) : option (list Z) :=
  match before, fuel with
  | [], _ => Some []
  | _, O => None
  | _, S fuel' =>
      match lit_read_prev_code_unit_from_utf8 before [] with
      | None => None
      | Some (read_size, ch) =>
          if negb (lit_char_is_white_space ch) then Some before else trim_back_loop fuel' (advance read_size before)
      end
  end.

Definition ecma_string_trim_back (string : list Z) : option (list Z) :=
  option_map (@rev Z) (trim_back_loop (length string) (rev string)).

Definition ecma_string_trim_helper (string : list Z) : option (list Z) :=
  match ecma_string_trim_front string with
  | None => None
  | Some string => ecma_string_trim_back string
  end.

(** ** Sequences of code units and code points *)

(** The CESU-8 string of a sequence of code units *)
Definition cesu8_encode (units : list Z) : list Z := concat (map lit_code_unit_to_utf8 units).

(** The code points of a sequence of code units: surrogate pairs joined, every
    other unit by itself *)
Fixpoint code_points (units : list Z) : list Z :=
  match units with
  | [] => []
  | u :: rest =>
      match rest with
      | v :: rest' =>
          if lit_is_code_point_utf16_high_surrogate u && lit_is_code_point_utf16_low_surrogate v
          then (65536 + (u - 55296) * 1024 + (v - 56320)) :: code_points rest'
          else u :: code_points rest
      | [] => [u]
      end
  end.

Definition utf8_encode (cps : list Z) : list Z := concat (map lit_code_point_to_utf8 cps).

Fixpoint units_lt (a b : list Z) : bool :=
  match a, b with
  | [], _ :: _ => true
  | _, [] => false
  | x :: a', y :: b' => (x <? y) || ((x =? y) && units_lt a' b')
  end.

Fixpoint drop_white_space (units : list Z) : list Z :=
  match units with
  | [] => []
  | u :: rest => if lit_char_is_white_space u then drop_white_space rest else units
  end.

(** ** Bytes *)

(** A boolean fact about bytes is decided by evaluation. *)
Lemma bytes_all (P : Z -> bool) : forallb P (map Z.of_nat (seq 0 256)) = true -> forall b, is_u8 b -> P b = true.
Proof.
  intros H b Hb. rewrite forallb_forall in H. apply H. rewrite <- (Z2Nat.id b) by apply Hb. apply in_map, in_seq.
  unfold is_u8 in Hb. lia.
Qed.

Lemma byte_tests b : is_u8 b ->
  is_1_byte b = (b <? 128) /\ is_2_byte b = (192 <=? b) && (b <? 224) /\ is_3_byte b = (224 <=? b) && (b <? 240)
  /\ is_extra_byte b = (128 <=? b) && (b <? 192).
Proof.
  intros Hb.
  pose proof (bytes_all (fun b => Bool.eqb (is_1_byte b) (b <? 128) && Bool.eqb (is_2_byte b) ((192 <=? b) && (b <? 224))
    && Bool.eqb (is_3_byte b) ((224 <=? b) && (b <? 240)) && Bool.eqb (is_extra_byte b) ((128 <=? b) && (b <? 192)))
    ltac:(vm_compute; reflexivity) b Hb) as H. cbv beta in H.
  rewrite !andb_true_iff in H. destruct H as (((H1 & H2) & H3) & H4). apply eqb_prop in H1, H2, H3, H4. auto.
Qed.

(** One continuation byte *)
Lemma extra_step ret b : 0 <= ret < 2 ^ 26 ->
  Z.lor (u32 (Z.shiftl ret LIT_UTF8_BITS_IN_EXTRA_BYTES)) (Z.land b 63) = ret * 64 + b mod 64.
Proof.
  intros H. unfold LIT_UTF8_BITS_IN_EXTRA_BYTES. rewrite Z.shiftl_mul_pow2, (land_ones' b 6) by (reflexivity || lia).
  rewrite u32_small by (unfold is_u32; lia). apply lor_mul_low; [lia | apply Z.mod_pos_bound; lia].
Qed.

(** ** The encoding of one code unit *)

Definition unit_bytes (u : Z) : list Z :=
  if u <? 128 then [u]
  else if u <? 2048 then [192 + u / 64; 128 + u mod 64]
  else [224 + u / 4096; 128 + (u / 64) mod 64; 128 + u mod 64].

Lemma lor_192 x : 0 <= x < 32 -> Z.lor 192 x = 192 + x.
Proof. intros H. change 192 with (6 * 2 ^ 5). rewrite lor_mul_low; lia. Qed.

Lemma lor_224 x : 0 <= x < 16 -> Z.lor 224 x = 224 + x.
Proof. intros H. change 224 with (14 * 2 ^ 4). rewrite lor_mul_low; lia. Qed.

Lemma lor_128 x : 0 <= x < 64 -> Z.lor 128 x = 128 + x.
Proof. intros H. change 128 with (2 * 2 ^ 6). rewrite lor_mul_low; lia. Qed.

Lemma lor_240 x : 0 <= x < 8 -> Z.lor 240 x = 240 + x.
Proof. intros H. change 240 with (30 * 2 ^ 3). rewrite lor_mul_low; lia. Qed.

Ltac mask_to_mod :=
  unfold u8, LIT_UTF8_BITS_IN_EXTRA_BYTES; rewrite ?(land_ones' _ 6 63), ?(land_ones' _ 5 31), ?(land_ones' _ 4 15), ?(land_ones' _ 3 7),
    ?Z.shiftr_div_pow2 by (reflexivity || lia);
  change (2 ^ 6) with 64; change (2 ^ 5) with 32; change (2 ^ 4) with 16; change (2 ^ 3) with 8.

Lemma code_unit_bytes u : is_u16 u -> lit_code_unit_to_utf8 u = unit_bytes u.
Proof.
  intros Hu. unfold is_u16 in Hu. unfold lit_code_unit_to_utf8, unit_bytes, LIT_UTF8_1_BYTE_CODE_POINT_MAX, LIT_UTF8_2_BYTE_CODE_POINT_MAX.
  destruct (Z.leb_spec u 127), (Z.ltb_spec u 128); try lia; [f_equal; unfold u8; apply Z.mod_small; lia |].
  destruct (Z.leb_spec u 2047), (Z.ltb_spec u 2048); try lia; cbv zeta; mask_to_mod.
  - rewrite lor_192, lor_128 by (Z.div_mod_to_equations; lia). repeat (apply (f_equal2 (@cons Z)); [Z.div_mod_to_equations; lia |]). reflexivity.
  - rewrite lor_224, !lor_128 by (Z.div_mod_to_equations; lia). repeat (apply (f_equal2 (@cons Z)); [Z.div_mod_to_equations; lia |]). reflexivity.
Qed.

Lemma unit_bytes_u8 u : is_u16 u -> Forall is_u8 (unit_bytes u).
Proof.
  intros Hu. unfold is_u16 in Hu. unfold unit_bytes.
  destruct (Z.ltb_spec u 128); [| destruct (Z.ltb_spec u 2048)];
    repeat (apply Forall_cons; [unfold is_u8; Z.div_mod_to_equations; lia |]); constructor.
Qed.

(** Reading a code unit back *)
Lemma read_code_unit u rest : is_u16 u ->
  lit_read_code_unit_from_cesu8 (lit_code_unit_to_utf8 u ++ rest) = Some (zlength (lit_code_unit_to_utf8 u), u).
Proof.
  intros Hu. rewrite code_unit_bytes by assumption. pose proof (unit_bytes_u8 u Hu) as Hb. unfold is_u16 in Hu. unfold unit_bytes in *.
  destruct (Z.ltb_spec u 128); [| destruct (Z.ltb_spec u 2048)];
    repeat match goal with H : Forall is_u8 (_ :: _) |- _ => apply Forall_cons_iff in H as [? H] end;
    unfold lit_read_code_unit_from_cesu8, lit_read_code_unit_from_cesu8_safe; cbn [app].
  - destruct (byte_tests u) as (-> & _); [assumption |]. rewrite (proj2 (Z.ltb_lt _ _)) by assumption.
    rewrite (land_ones' u 7) by (reflexivity || lia). unfold u16. rewrite (Z.mod_small u (2 ^ 7)), Z.mod_small by lia. reflexivity.
  - destruct (byte_tests (192 + u / 64)) as (-> & -> & _); [assumption |].
    rewrite (proj2 (Z.ltb_ge _ _)), (proj2 (Z.leb_le _ _)), (proj2 (Z.ltb_lt _ _)) by (Z.div_mod_to_equations; lia).
    cbn [andb Z.ltb Z.compare Pos.compare Pos.compare_cont]. change (Z.to_nat (2 - 1)) with 1%nat. cbn [read_extra_bytes].
    rewrite (land_ones' _ 5 31), extra_step by (reflexivity || (Z.div_mod_to_equations; lia)). cbn [option_map].
    unfold u16, zlength. cbn [length]. do 2 f_equal. change (2 ^ 5) with 32. Z.div_mod_to_equations; lia.
  - destruct (byte_tests (224 + u / 4096)) as (-> & -> & _); [assumption |].
    rewrite (proj2 (Z.ltb_ge _ _)), (proj2 (Z.leb_le _ _)), (proj2 (Z.ltb_ge _ 224)) by (Z.div_mod_to_equations; lia).
    cbn [andb Z.ltb Z.compare Pos.compare Pos.compare_cont]. change (Z.to_nat (3 - 1)) with 2%nat. cbn [read_extra_bytes].
    rewrite (land_ones' _ 4 15) by (reflexivity || lia). change (2 ^ 4) with 16.
    rewrite !extra_step by (try rewrite extra_step; Z.div_mod_to_equations; lia). cbn [option_map].
    unfold u16, zlength. cbn [length]. do 2 f_equal. Z.div_mod_to_equations; lia.
Qed.

Lemma advance_unit u rest : advance (zlength (lit_code_unit_to_utf8 u)) (lit_code_unit_to_utf8 u ++ rest) = rest.
Proof. unfold advance, zlength. rewrite Nat2Z.id, skipn_app, skipn_all, Nat.sub_diag. reflexivity. Qed.

Lemma code_unit_length u : 1 <= zlength (lit_code_unit_to_utf8 u) <= 3.
Proof. unfold lit_code_unit_to_utf8. destruct (_ <=? _); [| destruct (_ <=? _)]; cbn; lia. Qed.

Lemma code_unit_nonempty u rest : lit_code_unit_to_utf8 u ++ rest <> [].
Proof. unfold lit_code_unit_to_utf8. destruct (_ <=? _); [| destruct (_ <=? _)]; discriminate. Qed.

(** ** Valid CESU-8 strings *)

Lemma cesu8_encode_cons u units : cesu8_encode (u :: units) = lit_code_unit_to_utf8 u ++ cesu8_encode units.
Proof. reflexivity. Qed.

Lemma cesu8_encode_app a b : cesu8_encode (a ++ b) = cesu8_encode a ++ cesu8_encode b.
Proof. unfold cesu8_encode. now rewrite map_app, concat_app. Qed.

Lemma valid_step fuel u rest : is_u16 u ->
  is_valid_cesu8_loop (S fuel) (lit_code_unit_to_utf8 u ++ rest) = is_valid_cesu8_loop fuel rest.
Proof.
  intros Hu. rewrite code_unit_bytes by assumption. pose proof (unit_bytes_u8 u Hu) as Hb. unfold is_u16 in Hu. unfold unit_bytes in *.
  destruct (Z.ltb_spec u 128); [| destruct (Z.ltb_spec u 2048)];
    repeat match goal with H : Forall is_u8 (_ :: _) |- _ => apply Forall_cons_iff in H as [? H] end;
    cbn [app is_valid_cesu8_loop cesu8_extra_bytes].
  - destruct (byte_tests u) as (-> & _); [assumption |]. now rewrite (proj2 (Z.ltb_lt _ _)) by assumption.
  - destruct (byte_tests (192 + u / 64)) as (-> & -> & _); [assumption |].
    destruct (byte_tests (128 + u mod 64)) as (_ & _ & _ & ->); [assumption |].
    rewrite (proj2 (Z.ltb_ge _ 128)), (proj2 (Z.leb_le 192 _)), (proj2 (Z.ltb_lt _ 224)),
      (proj2 (Z.leb_le 128 _)), (proj2 (Z.ltb_lt _ 192)) by (Z.div_mod_to_equations; lia). cbn [andb].
    rewrite (land_ones' _ 5 31) by (reflexivity || lia). change (2 ^ 5) with 32. rewrite extra_step by (Z.div_mod_to_equations; lia).
    now rewrite (proj2 (Z.ltb_ge _ 128)) by (Z.div_mod_to_equations; lia).
  - destruct (byte_tests (224 + u / 4096)) as (-> & -> & -> & _); [assumption |].
    destruct (byte_tests (128 + (u / 64) mod 64)) as (_ & _ & _ & ->); [assumption |].
    destruct (byte_tests (128 + u mod 64)) as (_ & _ & _ & ->); [assumption |].
    rewrite (proj2 (Z.ltb_ge _ 128)), (proj2 (Z.leb_le 192 _)), (proj2 (Z.ltb_ge _ 224)), (proj2 (Z.leb_le 224 _)), (proj2 (Z.ltb_lt _ 240)),
      !(proj2 (Z.leb_le 128 _)), !(proj2 (Z.ltb_lt _ 192)) by (Z.div_mod_to_equations; lia). cbn [andb].
    rewrite (land_ones' _ 4 15) by (reflexivity || lia). change (2 ^ 4) with 16.
    rewrite !extra_step by (try rewrite extra_step; Z.div_mod_to_equations; lia).
    now rewrite (proj2 (Z.ltb_ge _ 2048)) by (Z.div_mod_to_equations; lia).
Qed.

Lemma valid_encode units : Forall is_u16 units -> forall fuel, (length (cesu8_encode units) <= fuel)%nat ->
  is_valid_cesu8_loop fuel (cesu8_encode units) = true.
Proof.
  induction 1 as [|u units Hu Hus IH]; intros fuel Hf; [destruct fuel; reflexivity |]. rewrite cesu8_encode_cons in *.
  pose proof (code_unit_length u) as Hl. unfold zlength in Hl. rewrite length_app in Hf.
  destruct fuel as [|fuel]; [lia |]. rewrite valid_step by assumption. apply IH. lia.
Qed.

(** Two and three bytes that pass the validation are the encoding of a code unit *)
Lemma valid_two c b : is_u8 c -> is_u8 b -> is_2_byte c = true -> is_extra_byte b = true ->
  (Z.land c 31 * 64 + b mod 64 <? 128) = false ->
  exists u, is_u16 u /\ lit_code_unit_to_utf8 u = [c; b].
Proof.
  intros Hc Hb T2 T3 Hm. destruct (byte_tests c Hc) as (_ & E2 & _), (byte_tests b Hb) as (_ & _ & _ & E3).
  rewrite E2 in T2. rewrite E3 in T3. rewrite (land_ones' _ 5 31) in Hm by (reflexivity || lia). change (2 ^ 5) with 32 in Hm. zbool.
  exists (c mod 32 * 64 + b mod 64). assert (Hu : is_u16 (c mod 32 * 64 + b mod 64)) by (unfold is_u16; Z.div_mod_to_equations; lia).
  split; [assumption |]. rewrite code_unit_bytes by assumption. unfold unit_bytes.
  rewrite (proj2 (Z.ltb_ge _ 128)), (proj2 (Z.ltb_lt _ 2048)) by (Z.div_mod_to_equations; lia).
  repeat (apply (f_equal2 (@cons Z)); [Z.div_mod_to_equations; lia |]). reflexivity.
Qed.

Lemma valid_three c b d : is_u8 c -> is_u8 b -> is_u8 d -> is_3_byte c = true -> is_extra_byte b = true -> is_extra_byte d = true ->
  ((Z.land c 15 * 64 + b mod 64) * 64 + d mod 64 <? 2048) = false ->
  exists u, is_u16 u /\ lit_code_unit_to_utf8 u = [c; b; d].
Proof.
  intros Hc Hb Hd T2 T3 T4 Hm. destruct (byte_tests c Hc) as (_ & _ & E2 & _), (byte_tests b Hb) as (_ & _ & _ & E3), (byte_tests d Hd) as (_ & _ & _ & E4).
  rewrite E2 in T2. rewrite E3 in T3. rewrite E4 in T4. rewrite (land_ones' _ 4 15) in Hm by (reflexivity || lia). change (2 ^ 4) with 16 in Hm. zbool.
  exists ((c mod 16 * 64 + b mod 64) * 64 + d mod 64).
  assert (Hu : is_u16 ((c mod 16 * 64 + b mod 64) * 64 + d mod 64)) by (unfold is_u16; Z.div_mod_to_equations; lia).
  split; [assumption |]. rewrite code_unit_bytes by assumption. unfold unit_bytes.
  rewrite (proj2 (Z.ltb_ge _ 128)), (proj2 (Z.ltb_ge _ 2048)) by (Z.div_mod_to_equations; lia).
  repeat (apply (f_equal2 (@cons Z)); [Z.div_mod_to_equations; lia |]). reflexivity.
Qed.

Lemma valid_decode fuel : forall buf, Forall is_u8 buf -> is_valid_cesu8_loop fuel buf = true ->
  exists units, Forall is_u16 units /\ buf = cesu8_encode units.
Proof.
  assert (Cons : forall fuel u bytes buf, (forall buf, Forall is_u8 buf -> is_valid_cesu8_loop fuel buf = true ->
      exists units, Forall is_u16 units /\ buf = cesu8_encode units) ->
    is_u16 u -> lit_code_unit_to_utf8 u = bytes -> Forall is_u8 buf -> is_valid_cesu8_loop fuel buf = true ->
    exists units, Forall is_u16 units /\ bytes ++ buf = cesu8_encode units).
  { intros f u bytes buf IH Hu <- Hb Hv. destruct (IH buf Hb Hv) as (units & Hus & ->). exists (u :: units). now split; [constructor |]. }
  induction fuel as [|fuel IH]; intros buf Hb Hv.
  { destruct buf; [exists []; now split; [constructor |] | discriminate]. }
  destruct Hb as [|c buf Hc Hb]; [exists []; now split; [constructor |] |]. cbn [is_valid_cesu8_loop] in Hv.
  destruct (is_1_byte c) eqn:T1.
  { destruct (byte_tests c Hc) as (E1 & _). rewrite E1 in T1. zbool.
    assert (Hu : is_u16 c) by (unfold is_u8, is_u16 in *; lia).
    apply (Cons fuel c [c] buf IH Hu); try assumption. rewrite code_unit_bytes by assumption. unfold unit_bytes.
    now rewrite (proj2 (Z.ltb_lt _ _)). }
  destruct (is_2_byte c) eqn:T2; [| destruct (is_3_byte c) eqn:T3; [| discriminate]].
  - destruct Hb as [|b buf Hb' Hb]; [discriminate |]. cbn [cesu8_extra_bytes] in Hv.
    destruct (is_extra_byte b) eqn:Tb; [| discriminate].
    rewrite extra_step in Hv by (rewrite (land_ones' _ 5 31) by (reflexivity || lia); change (2 ^ 5) with 32; Z.div_mod_to_equations; lia).
    destruct (_ <? _) eqn:Tm; [discriminate |]. destruct (valid_two c b Hc Hb' T2 Tb Tm) as (u & Hu & E).
    apply (Cons fuel u [c; b] buf IH Hu E Hb Hv).
  - destruct Hb as [|b buf Hb' Hb]; [discriminate |]. cbn [cesu8_extra_bytes] in Hv.
    destruct (is_extra_byte b) eqn:Tb; [| discriminate]. destruct Hb as [|d buf Hd Hb]; [discriminate |].
    destruct (is_extra_byte d) eqn:Td; [| discriminate].
    assert (Hl : 0 <= Z.land c 15 < 16) by (rewrite (land_ones' _ 4 15) by (reflexivity || lia); apply Z.mod_pos_bound; lia).
    rewrite !extra_step in Hv by (try rewrite extra_step; Z.div_mod_to_equations; lia).
    destruct (_ <? _) eqn:Tm; [discriminate |]. destruct (valid_three c b d Hc Hb' Hd T3 Tb Td Tm) as (u & Hu & E).
    apply (Cons fuel u [c; b; d] buf IH Hu E Hb Hv).
Qed.

Lemma valid_cesu8_iff buf : Forall is_u8 buf ->
  lit_is_valid_cesu8_string buf = true <-> exists units, Forall is_u16 units /\ buf = cesu8_encode units.
Proof.
  intros Hb. split; [now apply valid_decode |]. intros (units & Hu & ->). now apply valid_encode.
Qed.

(** ** Loops over valid strings *)

(** The loop bodies see one code unit at a time: the fuel of every loop covers
    one byte per code unit *)
Lemma encode_length_ge units : (length units <= length (cesu8_encode units))%nat.
Proof.
  induction units as [|u units IH]; [reflexivity |]. rewrite cesu8_encode_cons, length_app. cbn [length].
  pose proof (code_unit_length u). unfold zlength in *. lia.
Qed.

Lemma encode_cons_view u units : exists c rest, lit_code_unit_to_utf8 u ++ cesu8_encode units = c :: rest.
Proof. destruct (_ ++ _) as [|c rest] eqn:E; [now apply code_unit_nonempty in E | eauto]. Qed.

(** Unfold one round of a loop whose string starts with a code unit *)
Ltac loop_round loop u units :=
  destruct (encode_cons_view u units) as (c0 & rest0 & E0); rewrite E0; cbn [loop]; rewrite <- E0;
  rewrite ?read_code_unit by assumption; rewrite ?advance_unit.

Lemma char_size u rest c tl : is_u16 u -> lit_code_unit_to_utf8 u ++ rest = c :: tl ->
  lit_get_unicode_char_size_by_utf8_first_byte c = zlength (lit_code_unit_to_utf8 u).
Proof.
  intros Hu E. pose proof (unit_bytes_u8 u Hu) as Hb. rewrite code_unit_bytes in * by assumption. unfold is_u16 in Hu. unfold unit_bytes in *.
  unfold lit_get_unicode_char_size_by_utf8_first_byte.
  destruct (Z.ltb_spec u 128); [| destruct (Z.ltb_spec u 2048)]; apply (f_equal (hd 0)) in E; change (hd 0 (c :: tl)) with c in E; rewrite <- E; clear E; cbn [hd app];
    apply Forall_cons_iff in Hb as [Hb _]; destruct (byte_tests _ Hb) as (-> & -> & _).
  - now rewrite (proj2 (Z.ltb_lt _ _)).
  - now rewrite (proj2 (Z.ltb_ge _ 128)), (proj2 (Z.leb_le 192 _)), (proj2 (Z.ltb_lt _ 224)) by (Z.div_mod_to_equations; lia).
  - now rewrite (proj2 (Z.ltb_ge _ 128)), (proj2 (Z.leb_le 192 _)), (proj2 (Z.ltb_ge _ 224)) by (Z.div_mod_to_equations; lia).
Qed.

Lemma string_length_encode units : Forall is_u16 units -> forall fuel n, (length units <= fuel)%nat ->
  string_length_loop fuel (cesu8_encode units) n = Some (n + zlength units).
Proof.
  induction 1 as [|u units Hu Hus IH]; intros fuel n Hf; [destruct fuel; cbn; f_equal; lia |].
  destruct fuel as [|fuel]; [cbn in Hf; lia |]. rewrite cesu8_encode_cons, zlength_cons.
  loop_round string_length_loop u units. rewrite (char_size u (cesu8_encode units) c0 rest0) by assumption.
  rewrite advance_unit, IH by (cbn in Hf; lia). f_equal. lia.
Qed.

Lemma code_unit_at_encode units : Forall is_u16 units -> forall i, (i < length units)%nat ->
  lit_utf8_string_code_unit_at (cesu8_encode units) i = nth_error units i.
Proof.
  induction 1 as [|u units Hu Hus IH]; intros i Hi; cbn in Hi; [lia |]. rewrite cesu8_encode_cons.
  destruct i as [|i]; cbn [lit_utf8_string_code_unit_at nth_error]; rewrite read_code_unit by assumption; [reflexivity |].
  rewrite advance_unit. apply IH. lia.
Qed.

Lemma compare_encode a : Forall is_u16 a -> forall b fuel, Forall is_u16 b -> (length a <= fuel)%nat ->
  compare_relational_loop fuel (cesu8_encode a) (cesu8_encode b) = Some (units_lt a b).
Proof.
  induction 1 as [|u a Hu Ha IH]; intros b fuel Hb Hf.
  - destruct Hb as [|v b Hv Hb]; [now destruct fuel |]. rewrite cesu8_encode_cons.
    destruct (encode_cons_view v b) as (c & rest & ->). now destruct fuel.
  - destruct fuel as [|fuel]; [cbn in Hf; lia |]. rewrite (cesu8_encode_cons u).
    destruct Hb as [|v b Hv Hb].
    + destruct (encode_cons_view u a) as (c & rest & ->). reflexivity.
    + rewrite cesu8_encode_cons. destruct (encode_cons_view u a) as (c & rest & E). destruct (encode_cons_view v b) as (c' & rest' & E').
      rewrite E, E'. cbn [compare_relational_loop]. rewrite <- E, <- E', !read_code_unit, !advance_unit by assumption. cbn [units_lt].
      destruct (Z.ltb_spec u v), (Z.ltb_spec v u), (Z.eqb_spec u v); cbn [orb andb]; try lia; try reflexivity.
      apply IH; [assumption | cbn in Hf; lia].
Qed.

(** ** Surrogate pairs *)

Definition is_high (u : Z) : Prop := LIT_UTF16_HIGH_SURROGATE_MIN <= u <= LIT_UTF16_HIGH_SURROGATE_MAX.
Definition is_low (u : Z) : Prop := LIT_UTF16_LOW_SURROGATE_MIN <= u <= LIT_UTF16_LOW_SURROGATE_MAX.

Lemma high_test u : lit_is_code_point_utf16_high_surrogate u = true <-> is_high u.
Proof. unfold lit_is_code_point_utf16_high_surrogate, is_high. rewrite andb_true_iff, !Z.leb_le. lia. Qed.

Lemma low_test u : lit_is_code_point_utf16_low_surrogate u = true <-> is_low u.
Proof. unfold lit_is_code_point_utf16_low_surrogate, is_low. rewrite andb_true_iff, !Z.leb_le. lia. Qed.

Lemma surrogates_disjoint u : lit_is_code_point_utf16_low_surrogate u = true -> lit_is_code_point_utf16_high_surrogate u = false.
Proof.
  intros H. apply low_test in H. destruct (lit_is_code_point_utf16_high_surrogate u) eqn:E; [| reflexivity].
  apply high_test in E. unfold is_low, is_high, LIT_UTF16_LOW_SURROGATE_MIN, LIT_UTF16_HIGH_SURROGATE_MAX in *. lia.
Qed.

Definition pair_code_point (h l : Z) : Z := 65536 + (h - 55296) * 1024 + (l - 56320).

Ltac surrogate_bounds :=
  unfold is_high, is_low, LIT_UTF16_HIGH_SURROGATE_MIN, LIT_UTF16_HIGH_SURROGATE_MAX, LIT_UTF16_LOW_SURROGATE_MIN,
    LIT_UTF16_LOW_SURROGATE_MAX, LIT_UTF16_FIRST_SURROGATE_CODE_POINT, LIT_UTF16_BITS_IN_SURROGATE in *.

Lemma pair_value h l : is_high h -> is_low l ->
  utf16_pair h l = pair_code_point h l /\ lit_convert_surrogate_pair_to_code_point h l = pair_code_point h l
  /\ convert_code_point_to_high_surrogate (pair_code_point h l) = h
  /\ convert_code_point_to_low_surrogate (pair_code_point h l) = l
  /\ 65536 <= pair_code_point h l <= 1114111.
Proof.
  intros Hh Hl. unfold utf16_pair, lit_convert_surrogate_pair_to_code_point, convert_code_point_to_high_surrogate,
    convert_code_point_to_low_surrogate, pair_code_point. surrogate_bounds.
  rewrite !(land_ones' _ 10 1023) by (reflexivity || lia). rewrite !Z.shiftl_mul_pow2, Z.shiftr_div_pow2 by lia. change (2 ^ 10) with 1024.
  set (x := h - 55296) in *. set (y := l - 56320) in *.
  assert (Hx : 0 <= x < 1024) by lia. assert (Hy : 0 <= y < 1024) by lia.
  assert (Eh : h mod 1024 = x) by (Z.div_mod_to_equations; lia). assert (El : l mod 1024 = y) by (Z.div_mod_to_equations; lia).
  rewrite Eh, El. unfold u16. rewrite !(Z.mod_small x), !(Z.mod_small y) by lia. unfold u32.
  rewrite !(Z.mod_small (x * 1024)) by lia. splits; try lia.
  - rewrite !Z.mod_small by (rewrite ?Z.mod_small; lia). lia.
  - rewrite (Z.mod_small (x * 1024 + 65536)) by lia. replace (x * 1024 + 65536) with ((x + 64) * 2 ^ 10) by lia.
    rewrite lor_mul_low by lia. lia.
  - rewrite (Z.mod_small (65536 + x * 1024 + y - 65536)) by lia. replace ((65536 + x * 1024 + y - 65536) / 1024) with x by (Z.div_mod_to_equations; lia).
    rewrite (Z.mod_small x) by lia. change 55296 with (54 * 2 ^ 10). rewrite lor_mul_low by lia. rewrite Z.mod_small by lia. lia.
  - replace ((65536 + x * 1024 + y) mod 1024) with y by (Z.div_mod_to_equations; lia). rewrite (Z.mod_small y) by lia.
    change 56320 with (55 * 2 ^ 10). rewrite lor_mul_low by lia. rewrite Z.mod_small by lia. lia.
Qed.

Lemma code_point_to_cesu8_unit u : is_u16 u -> lit_code_point_to_cesu8 u = lit_code_unit_to_utf8 u.
Proof.
  intros Hu. unfold lit_code_point_to_cesu8, LIT_UTF16_CODE_UNIT_MAX. unfold is_u16 in Hu.
  rewrite (proj2 (Z.leb_le _ _)) by lia. unfold u16. now rewrite Z.mod_small by lia.
Qed.

Lemma code_point_to_cesu8_pair h l : is_high h -> is_low l ->
  lit_code_point_to_cesu8 (utf16_pair h l) = lit_code_unit_to_utf8 h ++ lit_code_unit_to_utf8 l.
Proof.
  intros Hh Hl. destruct (pair_value h l Hh Hl) as (-> & _ & E1 & E2 & Hr). unfold lit_code_point_to_cesu8, LIT_UTF16_CODE_UNIT_MAX.
  rewrite (proj2 (Z.leb_gt _ _)) by lia. now rewrite E1, E2.
Qed.

(** ** From UTF-16 *)

(** Induction along the code points of a sequence of code units *)
Lemma code_points_ind (P : list Z -> Prop) :
  P [] -> (forall h l units, is_high h -> is_low l -> P units -> P (h :: l :: units)) ->
  (forall u units, ~ (is_high u /\ exists l rest, units = l :: rest /\ is_low l) -> P units -> P (u :: units)) ->
  forall units, P units.
Proof.
  intros H0 H2 H1 units. remember (length units) as n eqn:E. assert (Hn : (length units <= n)%nat) by lia. clear E. revert units Hn.
  induction n as [|n IH]; intros units Hn; [destruct units; [assumption | cbn in Hn; lia] |].
  destruct units as [|u [|v units]]; [assumption | |]; cbn in Hn.
  - apply H1; [intros (_ & l & rest & E & _); discriminate | apply IH; cbn; lia].
  - destruct (lit_is_code_point_utf16_high_surrogate u) eqn:Eh; [destruct (lit_is_code_point_utf16_low_surrogate v) eqn:El |].
    + apply H2; [now apply high_test | now apply low_test | apply IH; lia].
    + apply H1; [| apply IH; cbn; lia]. intros (_ & l & rest & E & Hl). injection E as <- <-. apply low_test in Hl. congruence.
    + apply H1; [| apply IH; cbn; lia]. intros (Hu & _). apply high_test in Hu. congruence.
Qed.

Lemma not_pair_view u v units : ~ (is_high u /\ exists l rest, v :: units = l :: rest /\ is_low l) ->
  lit_is_code_point_utf16_high_surrogate u = true -> lit_is_code_point_utf16_low_surrogate v = false.
Proof.
  intros N H. destruct (lit_is_code_point_utf16_low_surrogate v) eqn:E; [| reflexivity]. exfalso. apply N.
  split; [now apply high_test |]. exists v, units. split; [reflexivity | now apply low_test].
Qed.

Lemma code_points_pair h l units : is_high h -> is_low l -> code_points (h :: l :: units) = pair_code_point h l :: code_points units.
Proof. intros Hh Hl. cbn [code_points]. now rewrite (proj2 (high_test h) Hh), (proj2 (low_test l) Hl). Qed.

Lemma code_points_single u units : ~ (is_high u /\ exists l rest, units = l :: rest /\ is_low l) ->
  code_points (u :: units) = u :: code_points units.
Proof.
  intros N. destruct units as [|v units]; [reflexivity |]. cbn [code_points].
  destruct (lit_is_code_point_utf16_high_surrogate u) eqn:Eh; [| reflexivity]. now rewrite (not_pair_view u v units N Eh).
Qed.

Lemma utf16_measure_spec units : Forall is_u16 units -> forall c b,
  utf16_measure_loop units c b = (c + zlength (code_points units), b + zlength (cesu8_encode units)).
Proof.
  induction units as [|h l units Hh Hl IH|u units N IH] using code_points_ind; intros Hu c b.
  - cbn. now rewrite !Z.add_0_r.
  - apply Forall_cons_iff in Hu as [U1 Hu]. apply Forall_cons_iff in Hu as [U2 Hu].
    rewrite code_points_pair, !cesu8_encode_cons, zlength_cons, !zlength_app by assumption.
    cbn [utf16_measure_loop]. rewrite (proj2 (high_test h) Hh), (proj2 (low_test l) Hl). cbn [negb].
    rewrite IH, code_point_to_cesu8_pair, zlength_app by assumption. f_equal; lia.
  - apply Forall_cons_iff in Hu as [U1 Hu]. rewrite code_points_single, cesu8_encode_cons, zlength_cons, zlength_app by assumption.
    assert (E : utf16_measure_loop (u :: units) c b = utf16_measure_loop units (c + 1) (b + zlength (lit_code_point_to_cesu8 u))).
    { cbn [utf16_measure_loop]. destruct (lit_is_code_point_utf16_high_surrogate u) eqn:Eh; [| reflexivity].
      destruct units as [|v units]; [reflexivity |]. now rewrite (not_pair_view u v units N Eh). }
    rewrite E, IH, code_point_to_cesu8_unit by assumption. f_equal; lia.
Qed.

Lemma append_fitting_all cesu8 size buf : buf <> [] -> zlength cesu8 + zlength buf <= size ->
  append_fitting cesu8 size buf = cesu8 ++ buf.
Proof.
  intros Hne Hs. unfold append_fitting. rewrite (proj2 (Z.leb_le _ _)) by assumption.
  destruct buf; [easy |]. rewrite zlength_cons. pose proof (zlength_nonneg buf). rewrite (proj2 (Z.eqb_neq _ 0)) by lia. reflexivity.
Qed.

Lemma utf16_convert_spec units : Forall is_u16 units -> forall cesu8 size,
  zlength cesu8 + zlength (cesu8_encode units) <= size -> utf16_convert_loop units cesu8 size = cesu8 ++ cesu8_encode units.
Proof.
  induction units as [|h l units Hh Hl IH|u units N IH] using code_points_ind; intros Hu cesu8 size Hs.
  - cbn. now rewrite app_nil_r.
  - apply Forall_cons_iff in Hu as [U1 Hu]. apply Forall_cons_iff in Hu as [U2 Hu]. rewrite !cesu8_encode_cons, !zlength_app in *.
    cbn [utf16_convert_loop]. rewrite (proj2 (high_test h) Hh), (proj2 (low_test l) Hl). cbn [negb].
    pose proof (zlength_nonneg (cesu8_encode units)).
    rewrite code_point_to_cesu8_pair, append_fitting_all, IH by (assumption || apply code_unit_nonempty || (rewrite ?zlength_app; lia)).
    now rewrite <- !app_assoc.
  - apply Forall_cons_iff in Hu as [U1 Hu]. rewrite !cesu8_encode_cons, !zlength_app in *. pose proof (zlength_nonneg (cesu8_encode units)).
    assert (E : utf16_convert_loop (u :: units) cesu8 size = utf16_convert_loop units (append_fitting cesu8 size (lit_code_point_to_cesu8 u)) size).
    { cbn [utf16_convert_loop]. destruct (lit_is_code_point_utf16_high_surrogate u) eqn:Eh; [| reflexivity].
      destruct units as [|v units]; [reflexivity |]. now rewrite (not_pair_view u v units N Eh). }
    rewrite E, code_point_to_cesu8_unit by assumption.
    rewrite append_fitting_all, IH; [now rewrite <- app_assoc | assumption | rewrite zlength_app; lia | | lia].
    intros En. apply (code_unit_nonempty u []). now rewrite En.
Qed.

(** ** Backwards *)

(** A code unit is a lead byte and continuation bytes *)
Lemma unit_lead u : is_u16 u -> exists c extra, lit_code_unit_to_utf8 u = c :: extra
  /\ is_extra_byte c = false /\ Forall (fun b => is_extra_byte b = true) extra.
Proof.
  intros Hu. rewrite code_unit_bytes by assumption. pose proof (unit_bytes_u8 u Hu) as Hb. unfold is_u16 in Hu. unfold unit_bytes in *.
  destruct (Z.ltb_spec u 128); [| destruct (Z.ltb_spec u 2048)]; eexists _, _; (split; [reflexivity |]);
    repeat match goal with H : Forall is_u8 (_ :: _) |- _ => apply Forall_cons_iff in H as [? H] end;
    (split; [| repeat (apply Forall_cons; [|]); try constructor]);
    match goal with |- is_extra_byte ?b = _ => destruct (byte_tests b) as (_ & _ & _ & ->); [assumption |] end;
    first [apply andb_false_iff; first [left; apply Z.leb_gt; Z.div_mod_to_equations; lia | right; apply Z.ltb_ge; Z.div_mod_to_equations; lia]
          | apply andb_true_iff; split; [apply Z.leb_le; Z.div_mod_to_equations; lia | apply Z.ltb_lt; Z.div_mod_to_equations; lia]].
Qed.

Lemma decr_extra extra : Forall (fun b => is_extra_byte b = true) extra -> forall before passed,
  lit_utf8_decr (rev extra ++ before) passed = lit_utf8_decr before (extra ++ passed).
Proof.
  intros H. rewrite <- (rev_involutive extra) in *. apply Forall_rev in H. rewrite rev_involutive in *.
  induction H as [|b l Hb Hl IH]; intros before passed; [reflexivity |]. cbn [app lit_utf8_decr rev]. rewrite Hb, IH.
  now rewrite <- app_assoc.
Qed.

Lemma decr_unit u before : is_u16 u ->
  lit_utf8_decr (rev (lit_code_unit_to_utf8 u) ++ before) [] = Some (lit_code_unit_to_utf8 u, before).
Proof.
  intros Hu. destruct (unit_lead u Hu) as (c & extra & -> & Hc & He). cbn [rev]. rewrite <- app_assoc, decr_extra by assumption.
  cbn [app lit_utf8_decr]. now rewrite Hc, app_nil_r.
Qed.

Lemma read_prev_unit u before after : is_u16 u ->
  lit_read_prev_code_unit_from_utf8 (rev (lit_code_unit_to_utf8 u) ++ before) after = Some (zlength (lit_code_unit_to_utf8 u), u).
Proof. intros Hu. unfold lit_read_prev_code_unit_from_utf8. now rewrite decr_unit, read_code_unit. Qed.

(** ** Trimming *)

Lemma trim_front_encode units : Forall is_u16 units -> forall fuel, (length units <= fuel)%nat ->
  trim_front_loop fuel (cesu8_encode units) = Some (cesu8_encode (drop_white_space units)).
Proof.
  induction 1 as [|u units Hu Hus IH]; intros fuel Hf; [now destruct fuel |].
  destruct fuel as [|fuel]; [cbn in Hf; lia |]. rewrite cesu8_encode_cons. cbn [drop_white_space].
  loop_round trim_front_loop u units. destruct (lit_char_is_white_space u); cbn [negb]; [| now rewrite cesu8_encode_cons].
  apply IH. cbn in Hf. lia.
Qed.

Lemma trim_back_encode units : Forall is_u16 units -> forall fuel, (length units <= fuel)%nat ->
  trim_back_loop fuel (rev (cesu8_encode (rev units))) = Some (rev (cesu8_encode (rev (drop_white_space units)))).
Proof.
  induction 1 as [|u units Hu Hus IH]; intros fuel Hf; [now destruct fuel |].
  destruct fuel as [|fuel]; [cbn in Hf; lia |]. cbn [rev]. rewrite cesu8_encode_app, rev_app_distr. cbn [drop_white_space].
  change (cesu8_encode [u]) with (lit_code_unit_to_utf8 u ++ []). rewrite app_nil_r.
  assert (E : exists c rest, rev (lit_code_unit_to_utf8 u) ++ rev (cesu8_encode (rev units)) = c :: rest).
  { destruct (_ ++ _) as [|c rest] eqn:E; [| eauto]. apply (f_equal (@rev Z)) in E. rewrite rev_app_distr, !rev_involutive in E.
    apply app_eq_nil in E as [_ E]. exfalso. apply (code_unit_nonempty u []). now rewrite E. }
  destruct E as (c & rest & E). rewrite E. cbn [trim_back_loop]. rewrite <- E, read_prev_unit by assumption.
  destruct (lit_char_is_white_space u); cbn [negb].
  - replace (advance _ _) with (rev (cesu8_encode (rev units))); [apply IH; cbn in Hf; lia |].
    unfold advance, zlength. rewrite Nat2Z.id, <- length_rev, skipn_app, skipn_all, Nat.sub_diag. reflexivity.
  - cbn [rev]. rewrite cesu8_encode_app, rev_app_distr. change (cesu8_encode [u]) with (lit_code_unit_to_utf8 u ++ []). now rewrite app_nil_r.
Qed.

(** A string without white space at both ends *)
Definition trim_units (units : list Z) : list Z := rev (drop_white_space (rev (drop_white_space units))).

Lemma drop_white_space_Forall (P : Z -> Prop) units : Forall P units -> Forall P (drop_white_space units).
Proof. induction 1; cbn; [constructor |]. destruct (lit_char_is_white_space x); [assumption | now constructor]. Qed.

Lemma trim_encode units : Forall is_u16 units -> ecma_string_trim_helper (cesu8_encode units) = Some (cesu8_encode (trim_units units)).
Proof.
  intros Hu. unfold ecma_string_trim_helper, ecma_string_trim_front. pose proof (encode_length_ge units).
  rewrite trim_front_encode by assumption. unfold ecma_string_trim_back, trim_units.
  set (front := drop_white_space units). assert (Hf : Forall is_u16 front) by now apply drop_white_space_Forall.
  assert (Hr : Forall is_u16 (rev front)) by now apply Forall_rev.
  pose proof (trim_back_encode (rev front) Hr (length (cesu8_encode front))) as T. rewrite rev_involutive in T.
  rewrite T; [cbn [option_map]; now rewrite rev_involutive | rewrite length_rev; apply encode_length_ge].
Qed.

(** ** UTF-8 *)

Definition is_code_point (cp : Z) : Prop := 0 <= cp <= 1114111.

Lemma code_point_to_utf8_unit u : u <= 65535 -> lit_code_point_to_utf8 u = lit_code_unit_to_utf8 u.
Proof.
  intros H. unfold lit_code_point_to_utf8, lit_code_unit_to_utf8, LIT_UTF8_3_BYTE_CODE_POINT_MAX.
  destruct (u <=? LIT_UTF8_1_BYTE_CODE_POINT_MAX); [reflexivity |]. destruct (u <=? LIT_UTF8_2_BYTE_CODE_POINT_MAX); [reflexivity |].
  now rewrite (proj2 (Z.leb_le _ _)) by lia.
Qed.

Lemma code_point_bytes cp : 65535 < cp <= 1114111 ->
  lit_code_point_to_utf8 cp = [240 + cp / 262144; 128 + (cp / 4096) mod 64; 128 + (cp / 64) mod 64; 128 + cp mod 64].
Proof.
  intros Hc. unfold lit_code_point_to_utf8, LIT_UTF8_1_BYTE_CODE_POINT_MAX, LIT_UTF8_2_BYTE_CODE_POINT_MAX, LIT_UTF8_3_BYTE_CODE_POINT_MAX.
  rewrite !(proj2 (Z.leb_gt _ _)) by lia. cbv zeta. mask_to_mod.
  rewrite lor_240, !lor_128 by (Z.div_mod_to_equations; lia).
  repeat (apply (f_equal2 (@cons Z)); [Z.div_mod_to_equations; lia |]). reflexivity.
Qed.

Lemma land_byte_224 b : is_u8 b -> (Z.land b 224 =? 128) = (128 <=? b) && (b <? 160).
Proof.
  intros Hb. apply eqb_prop. exact (bytes_all (fun b => Bool.eqb (Z.land b 224 =? 128) ((128 <=? b) && (b <? 160))) ltac:(vm_compute; reflexivity) b Hb).
Qed.

(** Decide the tests on a byte given by arithmetic *)
Ltac byte_solve :=
  repeat match goal with
  | |- context [is_1_byte ?b] => destruct (byte_tests b ltac:(unfold is_u8; Z.div_mod_to_equations; lia)) as (-> & _)
  | |- context [is_2_byte ?b] => destruct (byte_tests b ltac:(unfold is_u8; Z.div_mod_to_equations; lia)) as (_ & -> & _)
  | |- context [is_3_byte ?b] => destruct (byte_tests b ltac:(unfold is_u8; Z.div_mod_to_equations; lia)) as (_ & _ & -> & _)
  | |- context [is_extra_byte ?b] => destruct (byte_tests b ltac:(unfold is_u8; Z.div_mod_to_equations; lia)) as (_ & _ & _ & ->)
  | |- context [Z.ltb ?a ?b] => first [rewrite (proj2 (Z.ltb_lt a b)) by (Z.div_mod_to_equations; lia) | rewrite (proj2 (Z.ltb_ge a b)) by (Z.div_mod_to_equations; lia)]
  | |- context [Z.leb ?a ?b] => first [rewrite (proj2 (Z.leb_le a b)) by (Z.div_mod_to_equations; lia) | rewrite (proj2 (Z.leb_gt a b)) by (Z.div_mod_to_equations; lia)]
  end; cbn [andb orb negb].

Lemma read_code_point_utf8 cp rest : is_code_point cp ->
  lit_read_code_point_from_utf8 (lit_code_point_to_utf8 cp ++ rest) = Some (zlength (lit_code_point_to_utf8 cp), cp).
Proof.
  intros Hc. unfold is_code_point in Hc. destruct (Z.lt_ge_cases 65535 cp).
  - rewrite code_point_bytes by lia. cbn [app lit_read_code_point_from_utf8]. byte_solve.
    change (Z.to_nat (4 - 1)) with 3%nat. cbn [read_extra_bytes]. rewrite (land_ones' _ 3 7) by (reflexivity || lia). change (2 ^ 3) with 8.
    assert (H0 : 0 <= (240 + cp / 262144) mod 8 < 8) by (apply Z.mod_pos_bound; lia).
    rewrite !extra_step by (repeat rewrite extra_step; Z.div_mod_to_equations; lia). cbn [option_map].
    unfold zlength. cbn [length]. do 2 f_equal. Z.div_mod_to_equations; lia.
  - rewrite code_point_to_utf8_unit, code_unit_bytes by (unfold is_u16; lia). unfold unit_bytes.
    destruct (Z.ltb_spec cp 128); [| destruct (Z.ltb_spec cp 2048)]; cbn [app lit_read_code_point_from_utf8]; byte_solve.
    + rewrite (land_ones' _ 7 127), Z.mod_small by (reflexivity || lia). reflexivity.
    + change (Z.to_nat (2 - 1)) with 1%nat. cbn [read_extra_bytes]. rewrite (land_ones' _ 5 31) by (reflexivity || lia). change (2 ^ 5) with 32.
      rewrite extra_step by (Z.div_mod_to_equations; lia). cbn [option_map]. unfold zlength. cbn [length]. do 2 f_equal. Z.div_mod_to_equations; lia.
    + change (Z.to_nat (3 - 1)) with 2%nat. cbn [read_extra_bytes]. rewrite (land_ones' _ 4 15) by (reflexivity || lia). change (2 ^ 4) with 16.
      rewrite !extra_step by (try rewrite extra_step; Z.div_mod_to_equations; lia). cbn [option_map]. unfold zlength. cbn [length].
      do 2 f_equal. Z.div_mod_to_equations; lia.
Qed.

Lemma valid_utf8_step cp rest strict : is_code_point cp ->
  (strict = true -> is_high cp -> low_surrogate_follows rest = false) ->
  lit_is_valid_utf8_string (lit_code_point_to_utf8 cp ++ rest) strict = lit_is_valid_utf8_string rest strict.
Proof.
  intros Hc Hs. unfold is_code_point in Hc. destruct (Z.lt_ge_cases 65535 cp).
  - rewrite code_point_bytes by lia. cbn [app lit_is_valid_utf8_string]. byte_solve.
    replace ((240 + cp / 262144 =? 240) && (128 + (cp / 4096) mod 64 <=? 128)) with false.
    2: { symmetry. apply andb_false_iff. destruct (Z.eqb_spec (240 + cp / 262144) 240); [right; apply Z.leb_gt; Z.div_mod_to_equations; lia | now left]. }
    replace ((240 + cp / 262144 =? 244) && (143 <? 128 + (cp / 4096) mod 64)) with false; [reflexivity |].
    symmetry. apply andb_false_iff. destruct (Z.eqb_spec (240 + cp / 262144) 244); [right; apply Z.ltb_ge; Z.div_mod_to_equations; lia | now left].
  - rewrite code_point_to_utf8_unit, code_unit_bytes by (unfold is_u16; lia). unfold unit_bytes.
    destruct (Z.ltb_spec cp 128); [| destruct (Z.ltb_spec cp 2048)]; cbn [app lit_is_valid_utf8_string]; byte_solve; try reflexivity.
    rewrite land_byte_224 by (unfold is_u8; Z.div_mod_to_equations; lia).
    replace ((224 + cp / 4096 =? 224) && ((128 <=? 128 + (cp / 64) mod 64) && (128 + (cp / 64) mod 64 <? 160))) with false.
    2: { symmetry. apply andb_false_iff. destruct (Z.eqb_spec (224 + cp / 4096) 224); [right | now left]. apply andb_false_iff. right.
         apply Z.ltb_ge. Z.div_mod_to_equations; lia. }
    destruct (_ && low_surrogate_follows rest) eqn:E; [| reflexivity]. exfalso.
    apply andb_true_iff in E as [E El]. zbool. rewrite Hs in El; [discriminate | assumption |].
    surrogate_bounds. Z.div_mod_to_equations; lia.
Qed.

(** ** From CESU-8 to UTF-8 *)

Lemma read_code_point_single u units : Forall is_u16 (u :: units) ->
  ~ (is_high u /\ exists l rest, units = l :: rest /\ is_low l) ->
  lit_read_code_point_from_cesu8 (cesu8_encode (u :: units)) = Some (zlength (lit_code_unit_to_utf8 u), u).
Proof.
  intros Hu N. apply Forall_cons_iff in Hu as [U1 Hu]. unfold lit_read_code_point_from_cesu8.
  rewrite cesu8_encode_cons, read_code_unit by assumption. rewrite advance_unit.
  destruct (lit_is_code_point_utf16_high_surrogate u) eqn:Eh; [| reflexivity].
  destruct units as [|v units]; [reflexivity |]. apply Forall_cons_iff in Hu as [U2 Hu].
  rewrite cesu8_encode_cons, read_code_unit by assumption. rewrite (not_pair_view u v units N Eh).
  destruct (encode_cons_view v units) as (c & rest & ->). reflexivity.
Qed.

Lemma read_code_point_pair h l units : is_u16 h -> is_u16 l -> is_high h -> is_low l ->
  lit_read_code_point_from_cesu8 (cesu8_encode (h :: l :: units))
  = Some (zlength (lit_code_unit_to_utf8 h) + zlength (lit_code_unit_to_utf8 l), pair_code_point h l).
Proof.
  intros U1 U2 Hh Hl. unfold lit_read_code_point_from_cesu8.
  rewrite !cesu8_encode_cons, read_code_unit by assumption. rewrite advance_unit, (proj2 (high_test h) Hh), read_code_unit by assumption.
  rewrite (proj2 (low_test l) Hl), (proj1 (proj2 (pair_value h l Hh Hl))).
  destruct (encode_cons_view l units) as (c & rest & ->). reflexivity.
Qed.

(** The UTF-8 encoding of the leading code points that fit into [room] bytes *)
Fixpoint utf8_fitting (room : Z) (cps : list Z) : list Z :=
  match cps with
  | [] => []
  | cp :: rest =>
      let bytes := lit_code_point_to_utf8 cp in
      if room <? zlength bytes then [] else bytes ++ utf8_fitting (room - zlength bytes) rest
  end.

Lemma utf8_encode_cons cp cps : utf8_encode (cp :: cps) = lit_code_point_to_utf8 cp ++ utf8_encode cps.
Proof. reflexivity. Qed.

Lemma utf8_fitting_all cps : forall room, zlength (utf8_encode cps) <= room -> utf8_fitting room cps = utf8_encode cps.
Proof.
  induction cps as [|cp cps IH]; intros room Hr; [reflexivity |]. rewrite utf8_encode_cons, zlength_app in *. cbn [utf8_fitting].
  pose proof (zlength_nonneg (utf8_encode cps)). rewrite (proj2 (Z.ltb_ge _ _)) by lia. now rewrite IH by lia.
Qed.

Lemma utf8_fitting_room cps : forall room, 0 <= room -> zlength (utf8_fitting room cps) <= room.
Proof.
  induction cps as [|cp cps IH]; intros room Hr; [cbn; lia |]. cbn [utf8_fitting].
  destruct (Z.ltb_spec room (zlength (lit_code_point_to_utf8 cp))); [cbn; lia |]. rewrite zlength_app. specialize (IH (room - zlength (lit_code_point_to_utf8 cp))). lia.
Qed.

Lemma high_length h : is_high h \/ is_low h -> zlength (lit_code_unit_to_utf8 h) = 3.
Proof.
  intros Hh. surrogate_bounds. rewrite code_unit_bytes by (unfold is_u16; lia). unfold unit_bytes.
  rewrite (proj2 (Z.ltb_ge _ 128)), (proj2 (Z.ltb_ge _ 2048)) by lia. reflexivity.
Qed.

Lemma pair_length cp : 65536 <= cp <= 1114111 -> zlength (lit_code_point_to_utf8 cp) = 4.
Proof. intros H. now rewrite code_point_bytes by lia. Qed.

Lemma advance_app (a b : list Z) : advance (zlength a) (a ++ b) = b.
Proof. unfold advance, zlength. rewrite Nat2Z.id, skipn_app, skipn_all, Nat.sub_diag. reflexivity. Qed.

Lemma first_app (a b : list Z) : firstn (Z.to_nat (zlength a)) (a ++ b) = a.
Proof. unfold zlength. rewrite Nat2Z.id, firstn_app, firstn_all, Nat.sub_diag. apply app_nil_r. Qed.

Lemma cesu8_to_utf8_spec units : Forall is_u16 units -> forall fuel utf8 size, (length (cesu8_encode units) <= fuel)%nat ->
  cesu8_to_utf8_loop fuel (cesu8_encode units) utf8 size = Some (utf8 ++ utf8_fitting (size - zlength utf8) (code_points units)).
Proof.
  unfold LIT_UTF16_FIRST_SURROGATE_CODE_POINT.
  induction units as [|h l units Hh Hl IH|u units N IH] using code_points_ind; intros Hu fuel utf8 size Hf.
  - destruct fuel; cbn; now rewrite app_nil_r.
  - pose proof Hu as Hall. apply Forall_cons_iff in Hu as [U1 Hu]. apply Forall_cons_iff in Hu as [U2 Hu].
    pose proof (read_code_point_pair h l units U1 U2 Hh Hl) as R. destruct (pair_value h l Hh Hl) as (_ & _ & _ & _ & Hr).
    rewrite code_points_pair by assumption. cbn [utf8_fitting]. rewrite pair_length by assumption.
    rewrite !cesu8_encode_cons, app_assoc in *. rewrite !length_app in Hf. pose proof (code_unit_length h) as Hlen. unfold zlength in Hlen.
    destruct fuel as [|fuel]; [lia |]. destruct (_ ++ cesu8_encode units) as [|c rest] eqn:E.
    { destruct (encode_cons_view l units) as (c & rest & E'). rewrite <- app_assoc, E' in E. symmetry in E. now apply app_cons_not_nil in E. }
    cbn [cesu8_to_utf8_loop]. rewrite R, <- E. rewrite <- zlength_app, advance_app. rewrite (proj2 (Z.leb_le 65536 _)) by lia.
    destruct (Z.ltb_spec size (zlength utf8 + 4)), (Z.ltb_spec (size - zlength utf8) 4); try lia; [now rewrite app_nil_r |].
    rewrite IH by (assumption || lia). rewrite zlength_app, pair_length by assumption. rewrite <- app_assoc. do 4 f_equal. lia.
  - pose proof Hu as Hall. apply Forall_cons_iff in Hu as [U1 Hu].
    pose proof (read_code_point_single u units Hall N) as R. rewrite code_points_single by assumption. cbn [utf8_fitting].
    rewrite code_point_to_utf8_unit by (unfold is_u16 in U1; lia). rewrite cesu8_encode_cons in *. rewrite length_app in Hf.
    pose proof (code_unit_length u) as Hlen. unfold zlength in Hlen. destruct fuel as [|fuel]; [lia |].
    destruct (encode_cons_view u units) as (c & rest & E). rewrite E in *. cbn [cesu8_to_utf8_loop]. rewrite R, <- E, advance_app.
    rewrite (proj2 (Z.leb_gt 65536 _)) by (unfold is_u16 in U1; lia).
    destruct (Z.ltb_spec size (zlength utf8 + zlength (lit_code_unit_to_utf8 u))),
      (Z.ltb_spec (size - zlength utf8) (zlength (lit_code_unit_to_utf8 u))); try lia; [now rewrite app_nil_r |].
    rewrite IH by (assumption || lia). rewrite first_app, zlength_app, <- app_assoc, Z.sub_add_distr. reflexivity.
Qed.

(** Size and length of the conversion, computed from the code units *)
Definition pairs_with (prev : Z) (units : list Z) : Prop :=
  match units with
  | [] => True
  | u :: _ => ~ (is_high prev /\ is_low u)
  end.

Lemma utf8_size_spec units : Forall is_u16 units -> forall fuel prev n, (length (cesu8_encode units) <= fuel)%nat -> pairs_with prev units ->
  utf8_size_loop fuel (cesu8_encode units) prev n = Some (n - zlength (cesu8_encode units) + zlength (utf8_encode (code_points units)))
  /\ utf8_length_loop fuel (cesu8_encode units) prev n = Some (n + zlength (code_points units)).
Proof.
  assert (Not : forall prev u, ~ (is_high prev /\ is_low u) ->
    lit_is_code_point_utf16_low_surrogate u && lit_is_code_point_utf16_high_surrogate prev = false).
  { intros prev u H. apply not_true_iff_false. rewrite andb_true_iff, low_test, high_test. tauto. }
  induction units as [|h l units Hh Hl IH|u units N IH] using code_points_ind; intros Hu fuel prev n Hf Hp.
  - destruct fuel; cbn; split; f_equal; lia.
  - apply Forall_cons_iff in Hu as [U1 Hu]. apply Forall_cons_iff in Hu as [U2 Hu]. cbn [pairs_with] in Hp.
    rewrite code_points_pair, utf8_encode_cons, !cesu8_encode_cons, !zlength_cons, !zlength_app in * by assumption.
    rewrite !length_app in Hf. pose proof (high_length h (or_introl Hh)) as L1. pose proof (high_length l (or_intror Hl)) as L2.
    destruct (pair_value h l Hh Hl) as (_ & _ & _ & _ & Hr). rewrite pair_length, L1, L2 by assumption. unfold zlength in L1, L2.
    destruct fuel as [|[|fuel]]; [lia | lia |].
    destruct (encode_cons_view h (l :: units)) as (c & rest & E). rewrite cesu8_encode_cons in E. rewrite E.
    destruct (encode_cons_view l units) as (c' & rest' & E').
    cbn [utf8_size_loop utf8_length_loop]. rewrite <- E, read_code_unit, advance_unit, E' by assumption.
    rewrite <- E', read_code_unit, advance_unit by assumption.
    rewrite <- !negb_andb, (Not prev h Hp), (proj2 (low_test l) Hl), (proj2 (high_test h) Hh). cbn [andb negb].
    assert (Hn : pairs_with l units).
    { destruct units as [|v units]; [exact I |]. intros [Hh' _]. surrogate_bounds. lia. }
    destruct (IH Hu fuel l (n - 2) ltac:(lia) Hn) as [-> _]. destruct (IH Hu fuel l (n + 1) ltac:(lia) Hn) as [_ ->].
    split; f_equal; lia.
  - apply Forall_cons_iff in Hu as [U1 Hu]. cbn [pairs_with] in Hp.
    rewrite code_points_single, utf8_encode_cons, cesu8_encode_cons, zlength_cons, !zlength_app in * by assumption.
    rewrite code_point_to_utf8_unit by (unfold is_u16 in U1; lia). rewrite length_app in Hf.
    pose proof (code_unit_length u) as Hlen. unfold zlength in Hlen. destruct fuel as [|fuel]; [lia |].
    destruct (encode_cons_view u units) as (c & rest & E). rewrite E. cbn [utf8_size_loop utf8_length_loop].
    rewrite <- E, read_code_unit, advance_unit by assumption. rewrite <- negb_andb, (Not prev u Hp). cbn [negb].
    assert (Hn : pairs_with u units).
    { destruct units as [|v units]; [exact I |]. intros [Hh' Hl']. apply N. eauto. }
    destruct (IH Hu fuel u n ltac:(lia) Hn) as [-> _]. destruct (IH Hu fuel u (n + 1) ltac:(lia) Hn) as [_ ->]. split; f_equal; lia.
Qed.

(** ** What the UTF-8 validation accepts *)

(** Four bytes F0 81..8F: an overlong encoding of a code point below 0x10000 *)
Definition overlong_four (s : list Z) : Prop :=
  exists b2 b3 b4, s = [240; b2; b3; b4] /\ 129 <= b2 <= 143 /\ is_u8 b3 /\ is_u8 b4 /\ is_extra_byte b3 = true /\ is_extra_byte b4 = true.

Definition accepted_sequence (s : list Z) : Prop :=
  (exists cp, is_code_point cp /\ s = lit_code_point_to_utf8 cp) \/ overlong_four s.

Lemma extra_range b : is_u8 b -> is_extra_byte b = true -> 128 <= b < 192.
Proof. intros Hb H. destruct (byte_tests b Hb) as (_ & _ & _ & E). rewrite E in H. zbool. lia. Qed.

Lemma valid_overlong s rest strict : overlong_four s -> lit_is_valid_utf8_string (s ++ rest) strict = lit_is_valid_utf8_string rest strict.
Proof.
  intros (b2 & b3 & b4 & -> & H2 & U3 & U4 & H3 & H4). cbn [app lit_is_valid_utf8_string]. rewrite H3, H4.
  destruct (byte_tests b2) as (_ & _ & _ & ->); [unfold is_u8; lia |].
  rewrite (proj2 (Z.leb_le 128 b2)), (proj2 (Z.ltb_lt b2 192)) by lia. cbn [andb negb Z.ltb Z.compare Pos.compare Pos.compare_cont Z.eqb Pos.eqb orb].
  now rewrite (proj2 (Z.leb_gt b2 128)) by lia.
Qed.

Lemma valid_accepted seqs : Forall accepted_sequence seqs -> lit_is_valid_utf8_string (concat seqs) false = true.
Proof.
  induction 1 as [|s seqs [(cp & Hc & ->)|Ho] Hs IH]; [reflexivity | |]; cbn [concat].
  - now rewrite valid_utf8_step by (assumption || discriminate).
  - now rewrite valid_overlong.
Qed.

Lemma accepted_two a b : is_u8 a -> 194 <= a < 224 -> is_u8 b -> is_extra_byte b = true -> accepted_sequence [a; b].
Proof.
  intros Ha Hr Hb Hx. pose proof (extra_range b Hb Hx). left. exists ((a - 192) * 64 + (b - 128)). split; [unfold is_code_point; lia |].
  rewrite code_point_to_utf8_unit, code_unit_bytes by (unfold is_u16; lia). unfold unit_bytes.
  rewrite (proj2 (Z.ltb_ge _ 128)), (proj2 (Z.ltb_lt _ 2048)) by lia.
  repeat (apply (f_equal2 (@cons Z)); [Z.div_mod_to_equations; lia |]). reflexivity.
Qed.

Lemma accepted_three a b c : is_u8 a -> 224 <= a < 240 -> is_u8 b -> is_extra_byte b = true -> is_u8 c -> is_extra_byte c = true ->
  (a =? 224) && (Z.land b 224 =? 128) = false -> accepted_sequence [a; b; c].
Proof.
  intros Ha Hr Hb Hx Hc Hy Hm. pose proof (extra_range b Hb Hx). pose proof (extra_range c Hc Hy). rewrite land_byte_224 in Hm by assumption.
  left. exists ((a - 224) * 4096 + (b - 128) * 64 + (c - 128)).
  assert (Hlow : 2048 <= (a - 224) * 4096 + (b - 128) * 64 + (c - 128)).
  { apply andb_false_iff in Hm as [Hm|Hm]; zbool; [lia |]. apply andb_false_iff in Hm as [Hm|Hm]; zbool; lia. }
  split; [unfold is_code_point; lia |]. rewrite code_point_to_utf8_unit, code_unit_bytes by (unfold is_u16; lia). unfold unit_bytes.
  rewrite (proj2 (Z.ltb_ge _ 128)), (proj2 (Z.ltb_ge _ 2048)) by lia.
  repeat (apply (f_equal2 (@cons Z)); [Z.div_mod_to_equations; lia |]). reflexivity.
Qed.

Lemma accepted_four a b c d : 240 <= a -> is_u8 b -> is_extra_byte b = true -> is_u8 c -> is_extra_byte c = true -> is_u8 d ->
  (244 <? a) || ((a =? 240) && (b <=? 128)) || ((a =? 244) && (143 <? b)) || negb (is_extra_byte d) = false ->
  accepted_sequence [a; b; c; d].
Proof.
  intros Hr Hb Hx Hc Hy Hd Hm. apply orb_false_iff in Hm as [Hm Hz]. apply orb_false_iff in Hm as [Hm M3].
  apply orb_false_iff in Hm as [M1 M2]. apply negb_false_iff in Hz. zbool.
  pose proof (extra_range b Hb Hx). pose proof (extra_range c Hc Hy). pose proof (extra_range d Hd Hz).
  destruct (Z.eq_dec a 240) as [->|Ha]; [destruct (Z.lt_ge_cases 143 b) |].
  2: { right. exists b, c, d. apply andb_false_iff in M2 as [M2|M2]; zbool; [lia |]. splits; try assumption; try lia; reflexivity. }
  all: left; eexists ((_ - 240) * 262144 + (b - 128) * 4096 + (c - 128) * 64 + (d - 128)).
  - split; [| rewrite (code_point_bytes ((240 - 240) * 262144 + (b - 128) * 4096 + (c - 128) * 64 + (d - 128))) by lia;
      repeat (apply (f_equal2 (@cons Z)); [Z.div_mod_to_equations; lia |]); reflexivity]. unfold is_code_point; lia.
  - assert (Hlt : a = 244 -> b <= 143) by (intros ->; apply andb_false_iff in M3 as [M3|M3]; zbool; lia).
    assert (Hle : (a - 240) * 262144 + (b - 128) * 4096 + (c - 128) * 64 + (d - 128) <= 1114111) by (destruct (Z.eq_dec a 244); lia).
    split; [| rewrite (code_point_bytes ((a - 240) * 262144 + (b - 128) * 4096 + (c - 128) * 64 + (d - 128))) by lia;
      repeat (apply (f_equal2 (@cons Z)); [Z.div_mod_to_equations; lia |]); reflexivity]. unfold is_code_point; lia.
Qed.

Lemma accepted_decode n : forall buf, (length buf <= n)%nat -> Forall is_u8 buf -> lit_is_valid_utf8_string buf false = true ->
  exists seqs, Forall accepted_sequence seqs /\ buf = concat seqs.
Proof.
  assert (Cons : forall n s buf, (forall buf, (length buf <= n)%nat -> Forall is_u8 buf -> lit_is_valid_utf8_string buf false = true ->
      exists seqs, Forall accepted_sequence seqs /\ buf = concat seqs) ->
    accepted_sequence s -> (length buf <= n)%nat -> Forall is_u8 buf -> lit_is_valid_utf8_string buf false = true ->
    exists seqs, Forall accepted_sequence seqs /\ s ++ buf = concat seqs).
  { intros m s buf IH Hs Hl Hb Hv. destruct (IH buf Hl Hb Hv) as (seqs & Hq & ->). exists (s :: seqs). now split; [constructor |]. }
  assert (Nil : exists seqs, Forall accepted_sequence seqs /\ [] = concat seqs) by (exists []; now split).
  induction n as [|n IH]; intros buf Hl Hb Hv; [destruct buf; [assumption | cbn in Hl; lia] |].
  destruct Hb as [|a buf Ha Hb]; [assumption |]. cbn [lit_is_valid_utf8_string length] in *.
  destruct (Z.ltb_spec a 128).
  { apply (Cons n [a]); try assumption; try lia. left. exists a. unfold is_u8 in Ha. split; [unfold is_code_point; lia |].
    rewrite code_point_to_utf8_unit, code_unit_bytes by (unfold is_u16; lia). unfold unit_bytes. now rewrite (proj2 (Z.ltb_lt _ _)). }
  destruct (Z.ltb_spec a 194); [discriminate |].
  destruct Hb as [|b buf Hb' Hb]; [discriminate |]. cbn [length] in Hl. destruct (is_extra_byte b) eqn:Xb; [| discriminate]. cbn [negb] in Hv.
  destruct (Z.ltb_spec a 224); [apply (Cons n [a; b]); try assumption; [apply accepted_two; assumption || lia | lia] |].
  destruct Hb as [|c buf Hc Hb]; [discriminate |]. cbn [length] in Hl. destruct (is_extra_byte c) eqn:Xc; [| discriminate]. cbn [negb] in Hv.
  destruct (Z.ltb_spec a 240).
  { destruct ((a =? 224) && (Z.land b 224 =? 128)) eqn:E; [discriminate |]. cbn [andb] in Hv.
    apply (Cons n [a; b; c]); try assumption; [apply accepted_three; assumption || lia | lia]. }
  destruct Hb as [|d buf Hd Hb]; [discriminate |]. cbn [length] in Hl.
  destruct ((244 <? a) || _ || _ || _) eqn:E; [discriminate |].
  apply (Cons n [a; b; c; d]); try assumption; [apply accepted_four; assumption | lia].
Qed.

(** ** Strictness of the conversion *)

Lemma low_follows cp rest : is_code_point cp -> low_surrogate_follows (lit_code_point_to_utf8 cp ++ rest) = true -> is_low cp.
Proof.
  intros Hc. unfold is_code_point in Hc. destruct (Z.lt_ge_cases 65535 cp).
  - rewrite code_point_bytes by lia. cbn [app low_surrogate_follows]. intros E. zbool. exfalso. Z.div_mod_to_equations; lia.
  - rewrite code_point_to_utf8_unit, code_unit_bytes by (unfold is_u16; lia). unfold unit_bytes.
    destruct (Z.ltb_spec cp 128); [| destruct (Z.ltb_spec cp 2048)]; cbn [app low_surrogate_follows];
      intros E; repeat match type of E with context [match ?l with _ => _ end] => destruct l; try discriminate end;
      zbool; surrogate_bounds; Z.div_mod_to_equations; lia.
Qed.

Lemma utf8_injective cp cp' : is_code_point cp -> is_code_point cp' -> lit_code_point_to_utf8 cp = lit_code_point_to_utf8 cp' -> cp = cp'.
Proof. intros H H' E. pose proof (read_code_point_utf8 cp [] H) as R. rewrite E, (read_code_point_utf8 cp' [] H') in R. congruence. Qed.

Lemma low_follows_iff l rest : is_low l -> low_surrogate_follows (lit_code_point_to_utf8 l ++ rest) = true.
Proof.
  intros Hl. surrogate_bounds. rewrite code_point_to_utf8_unit, code_unit_bytes by (unfold is_u16; lia). unfold unit_bytes.
  rewrite (proj2 (Z.ltb_ge l 128)), (proj2 (Z.ltb_ge l 2048)) by lia. cbn [app low_surrogate_follows].
  rewrite (proj2 (Z.eqb_eq _ _)), (proj2 (Z.leb_le _ _)), (proj2 (Z.leb_le _ _)) by (Z.div_mod_to_equations; lia). reflexivity.
Qed.

Lemma valid_high_step h rest : is_high h -> low_surrogate_follows rest = true -> lit_is_valid_utf8_string (lit_code_point_to_utf8 h ++ rest) true = false.
Proof.
  intros Hh Hf. surrogate_bounds. rewrite code_point_to_utf8_unit, code_unit_bytes by (unfold is_u16; lia). unfold unit_bytes.
  rewrite (proj2 (Z.ltb_ge h 128)), (proj2 (Z.ltb_ge h 2048)) by lia. cbn [app lit_is_valid_utf8_string]. byte_solve.
  rewrite Hf, (proj2 (Z.eqb_eq (224 + h / 4096) 237)) by (Z.div_mod_to_equations; lia).
  cbn [andb]. now destruct (_ && _).
Qed.

(** A strict validation accepts less *)
Lemma strict_accepts_less n : forall buf, (length buf <= n)%nat -> lit_is_valid_utf8_string buf true = true -> lit_is_valid_utf8_string buf false = true.
Proof.
  induction n as [| n IH]; intros buf Hl; [now destruct buf; [| cbn in Hl; lia] |]. destruct buf as [| a buf]; [tauto |]. cbn [lit_is_valid_utf8_string length] in *.
  destruct (a <? 128); [apply IH; lia |]. destruct (a <? 194); [tauto |]. destruct buf as [| b buf]; [tauto |]. cbn [length] in Hl. destruct (negb (is_extra_byte b)); [tauto |].
  destruct (a <? 224); [apply IH; lia |]. destruct buf as [| c buf]; [tauto |]. cbn [length] in Hl. destruct (negb (is_extra_byte c)); [tauto |].
  destruct (a <? 240).
  - destruct ((a =? 224) && _); [tauto |]. cbn [andb]. destruct (_ && low_surrogate_follows buf); [discriminate | apply IH; lia].
  - destruct buf as [| d buf]; [tauto |]. cbn [length] in Hl. destruct (_ || _); [tauto | apply IH; lia].
Qed.

(** The encodings of a high and of a low surrogate, one after the other *)
Definition surrogates_in (seqs : list (list Z)) : Prop :=
  exists before h l after, seqs = before ++ lit_code_point_to_utf8 h :: lit_code_point_to_utf8 l :: after /\ is_high h /\ is_low l.

Lemma surrogates_in_after s seqs : surrogates_in seqs -> surrogates_in (s :: seqs).
Proof. intros (before & h & l & after & -> & H). now exists (s :: before), h, l, after. Qed.

Lemma surrogate_step cp seqs : is_code_point cp -> Forall accepted_sequence seqs -> is_high cp -> low_surrogate_follows (concat seqs) = true -> surrogates_in (lit_code_point_to_utf8 cp :: seqs).
Proof.
  intros Hc Hs Hh Hf. destruct Hs as [| s seqs Ha Hs]; [discriminate |]. cbn [concat] in Hf. destruct Ha as [(l & Hl & ->) | (b2 & b3 & b4 & -> & _)]; [| discriminate].
  exists [], cp, l, seqs. splits; [reflexivity | exact Hh | exact (low_follows l _ Hl Hf)].
Qed.

Lemma valid_strict seqs : Forall accepted_sequence seqs -> lit_is_valid_utf8_string (concat seqs) true = true <-> ~ surrogates_in seqs.
Proof.
  induction 1 as [| s seqs Ha Hs IH]; cbn [concat].
  - split; [intros _ ([| s before] & h & l & after & E & _); discriminate | reflexivity].
  - assert (Hrest : ~ surrogates_in (s :: seqs) -> ~ surrogates_in seqs) by (intros Hn H; now apply Hn, surrogates_in_after). destruct Ha as [(cp & Hc & ->) | Ho].
    + destruct (low_surrogate_follows (concat seqs)) eqn:Ef; [destruct (Z_le_dec LIT_UTF16_HIGH_SURROGATE_MIN cp) as [Hmin | Hmin], (Z_le_dec cp LIT_UTF16_HIGH_SURROGATE_MAX) as [Hmax | Hmax] |].
      1: { assert (Hh : is_high cp) by now split. rewrite (valid_high_step cp _ Hh Ef). split; [discriminate | intros Hn; exfalso; now apply Hn, surrogate_step]. }
      all: rewrite valid_utf8_step by (exact Hc || (unfold is_high; intuition congruence)); rewrite IH; split; [| exact Hrest].
      all: intros Hn ([| s before] & h & l & after & E & Hh & Hl); [| injection E as _ ->; apply Hn; now exists before, h, l, after].
      all: injection E as E1 ->; assert (cp = h) as -> by (apply (utf8_injective cp h); [exact Hc | unfold is_code_point; surrogate_bounds; lia | exact E1]).
      1, 2, 3: unfold is_high in Hh; lia.
      cbn [concat] in Ef. rewrite low_follows_iff in Ef by exact Hl. discriminate.
    + rewrite valid_overlong by exact Ho. rewrite IH. split; [| exact Hrest]. destruct Ho as (b2 & b3 & b4 & -> & _).
      intros Hn ([| s before] & h & l & after & E & Hh & Hl); [| injection E as _ ->; apply Hn; now exists before, h, l, after].
      injection E as E _. surrogate_bounds. rewrite code_point_to_utf8_unit, code_unit_bytes in E by (unfold is_u16; lia). unfold unit_bytes in E.
      rewrite (proj2 (Z.ltb_ge h 128)), (proj2 (Z.ltb_ge h 2048)) in E by lia. discriminate.
Qed.

Lemma valid_conversion units : Forall is_u16 units -> forall strict,
  lit_is_valid_utf8_string (utf8_encode (code_points units)) strict = true.
Proof.
  induction units as [|h l units Hh Hl IH|u units N IH] using code_points_ind; intros Hu strict; [reflexivity | |].
  - apply Forall_cons_iff in Hu as [U1 Hu]. apply Forall_cons_iff in Hu as [U2 Hu].
    destruct (pair_value h l Hh Hl) as (_ & _ & _ & _ & Hr). rewrite code_points_pair, utf8_encode_cons by assumption.
    rewrite valid_utf8_step; [now apply IH | unfold is_code_point; lia |]. intros _ Hc. surrogate_bounds. lia.
  - apply Forall_cons_iff in Hu as [U1 Hu]. rewrite code_points_single, utf8_encode_cons by assumption.
    rewrite valid_utf8_step; [now apply IH | unfold is_code_point, is_u16 in *; lia |]. intros _ Hhi.
    destruct (low_surrogate_follows _) eqn:E; [| reflexivity]. exfalso.
    destruct units as [|v units]; [discriminate |]. apply Forall_cons_iff in Hu as [U2 Hu].
    assert (V : exists cp cps, code_points (v :: units) = cp :: cps /\ is_code_point cp /\ (cp = v \/ 65536 <= cp)).
    { destruct units as [|w units]; [exists v, []; unfold is_code_point, is_u16 in *; split; [reflexivity | lia] |].
      destruct (lit_is_code_point_utf16_high_surrogate v) eqn:Ev; [destruct (lit_is_code_point_utf16_low_surrogate w) eqn:Ew |].
      - apply high_test in Ev. apply low_test in Ew. rewrite code_points_pair by assumption.
        destruct (pair_value v w Ev Ew) as (_ & _ & _ & _ & Hr). eexists _, _. split; [reflexivity |]. unfold is_code_point. lia.
      - exists v, (code_points (w :: units)). split; [| unfold is_code_point, is_u16 in *; lia]. apply code_points_single.
        intros (_ & l & rest & El & Hl). injection El as <- <-. apply low_test in Hl. congruence.
      - exists v, (code_points (w :: units)). split; [| unfold is_code_point, is_u16 in *; lia]. apply code_points_single.
        intros (Hv & _). apply high_test in Hv. congruence. }
    destruct V as (cp & cps & EV & Hcp & Hv). rewrite EV, utf8_encode_cons in E. apply low_follows in E; [| assumption].
    destruct Hv as [->|Hv]; [apply N; eauto | surrogate_bounds; lia].
Qed.

Lemma no_pair_with_0 units : pairs_with 0 units.
Proof. destruct units; [exact I | intros [H0 _]; surrogate_bounds; lia]. Qed.

Lemma utf8_size_encode units : Forall is_u16 units -> lit_get_utf8_size_of_cesu8_string (cesu8_encode units) = Some (zlength (utf8_encode (code_points units))).
Proof.
  intros Hu. unfold lit_get_utf8_size_of_cesu8_string.
  destruct (utf8_size_spec units Hu (length (cesu8_encode units)) 0 (zlength (cesu8_encode units)) (le_n _) (no_pair_with_0 units)) as [-> _]. f_equal. lia.
Qed.

Lemma utf8_length_encode units : Forall is_u16 units -> lit_get_utf8_length_of_cesu8_string (cesu8_encode units) = Some (zlength (code_points units)).
Proof.
  intros Hu. unfold lit_get_utf8_length_of_cesu8_string.
  destruct (utf8_size_spec units Hu (length (cesu8_encode units)) 0 0 (le_n _) (no_pair_with_0 units)) as [_ ->]. reflexivity.
Qed.

(** ** Properties *)

(** lit_is_valid_cesu8_string accepts exactly the byte strings that encode
    a sequence of UTF-16 code units. *)
Theorem lit_is_valid_cesu8_string_correct buf : Forall is_u8 buf ->
  lit_is_valid_cesu8_string buf = true <-> exists units, Forall is_u16 units /\ buf = cesu8_encode units.
Proof. apply valid_cesu8_iff. Qed.

(** The accessors of the engine's strings see the encoded code units: the
    length, the unit at every index, the order of two strings, and the string
    without leading and trailing white space. *)
Theorem lit_cesu8_access_correct units others : Forall is_u16 units -> Forall is_u16 others ->
  lit_utf8_string_length (cesu8_encode units) = Some (zlength units)
  /\ (forall i, (i < length units)%nat -> lit_utf8_string_code_unit_at (cesu8_encode units) i = nth_error units i)
  /\ lit_compare_utf8_strings_relational (cesu8_encode units) (cesu8_encode others) = Some (units_lt units others)
  /\ ecma_string_trim_helper (cesu8_encode units) = Some (cesu8_encode (trim_units units)).
Proof.
  intros Hu Ho. pose proof (encode_length_ge units). splits.
  - unfold lit_utf8_string_length. rewrite string_length_encode by assumption. reflexivity.
  - intros i Hi. now apply code_unit_at_encode.
  - apply compare_encode; assumption.
  - now apply trim_encode.
Qed.

(** Converting UTF-16 to the engine's encoding is exact: the measured size is
    the size of the result, which encodes the given code units, lone surrogates
    included, and the measured count is the number of code points. *)
Theorem lit_convert_utf16_correct units : Forall is_u16 units ->
  lit_utf16_as_cesu8_measure units = (zlength (code_points units), zlength (cesu8_encode units))
  /\ lit_convert_utf16_string_to_cesu8_string units (snd (lit_utf16_as_cesu8_measure units)) = cesu8_encode units.
Proof.
  intros Hu. unfold lit_utf16_as_cesu8_measure, lit_convert_utf16_string_to_cesu8_string.
  rewrite utf16_measure_spec by assumption. cbn [Z.add snd]. split; [reflexivity |].
  rewrite utf16_convert_spec by (assumption || (cbn; lia)). reflexivity.
Qed.

(** Converting the engine's encoding to UTF-8 writes the code points that
    fit into the buffer, surrogate pairs joined; what it writes for a large
    enough buffer is valid in the strict sense and has the size and the length
    that lit_get_utf8_size_of_cesu8_string and its companion compute; the
    returned count is that size modulo 256. *)
Theorem lit_convert_cesu8_string_to_utf8_string_correct units utf8_size : Forall is_u16 units ->
  let result := utf8_fitting utf8_size (code_points units) in
  let full := utf8_encode (code_points units) in
  lit_convert_cesu8_string_to_utf8_string (cesu8_encode units) utf8_size = Some (result, zlength result mod 256)
  /\ (zlength full <= utf8_size -> result = full)
  /\ lit_is_valid_utf8_string full true = true
  /\ lit_get_utf8_size_of_cesu8_string (cesu8_encode units) = Some (zlength full)
  /\ lit_get_utf8_length_of_cesu8_string (cesu8_encode units) = Some (zlength (code_points units)).
Proof.
  intros Hu result full. splits.
  - unfold lit_convert_cesu8_string_to_utf8_string. rewrite cesu8_to_utf8_spec by (assumption || lia).
    cbn [app option_map]. rewrite (@zlength_nil Z), Z.sub_0_r. reflexivity.
  - apply utf8_fitting_all.
  - now apply valid_conversion.
  - now apply utf8_size_encode.
  - now apply utf8_length_encode.
Qed.

(** The UTF-8 decoder inverts the encoder on every code point. *)
Theorem lit_utf8_roundtrip cp rest : is_code_point cp ->
  lit_read_code_point_from_utf8 (lit_code_point_to_utf8 cp ++ rest) = Some (zlength (lit_code_point_to_utf8 cp), cp).
Proof. apply read_code_point_utf8. Qed.

(** C37: lit_is_valid_utf8_string accepts exactly the concatenations of encoded code
    points (lone surrogates included) and of the overlong four-byte sequences
    F0 81..8F xx xx, in which, with the strict option, no encoded high surrogate is
    followed by an encoded low one.  The overlong sequences are not well-formed UTF-8. *)
Theorem lit_is_valid_utf8_string_characterized buf is_strict : Forall is_u8 buf ->
  lit_is_valid_utf8_string buf is_strict = true <-> exists seqs, Forall accepted_sequence seqs /\ buf = concat seqs /\ (is_strict = true -> ~ surrogates_in seqs).
Proof.
  intros Hb. split.
  - intros Hv. assert (Hv' : lit_is_valid_utf8_string buf false = true) by (destruct is_strict; [now apply (strict_accepts_less (length buf)) | exact Hv]).
    destruct (accepted_decode (length buf) buf (Nat.le_refl _) Hb Hv') as (seqs & Hs & ->). exists seqs. splits; [exact Hs | reflexivity |]. intros ->. now apply valid_strict.
  - intros (seqs & Hs & -> & Hn). destruct is_strict; [apply valid_strict; auto | now apply valid_accepted].
Qed.

Lemma lit_is_valid_cesu8_string_witness :
  lit_is_valid_cesu8_string [65; 237; 160; 181] = true <-> exists units, Forall is_u16 units /\ [65; 237; 160; 181] = cesu8_encode units.
Proof. apply (lit_is_valid_cesu8_string_correct [65; 237; 160; 181]). repeat (constructor; [split; reflexivity || discriminate |]). constructor. Defined.

Lemma lit_cesu8_access_witness :
  lit_utf8_string_length (cesu8_encode [32; 8364; 9]) = Some 3
  /\ (forall i, (i < 3)%nat -> lit_utf8_string_code_unit_at (cesu8_encode [32; 8364; 9]) i = nth_error [32; 8364; 9] i)
  /\ lit_compare_utf8_strings_relational (cesu8_encode [32; 8364; 9]) (cesu8_encode [33]) = Some true
  /\ ecma_string_trim_helper (cesu8_encode [32; 8364; 9]) = Some (cesu8_encode [8364]).
Proof.
  apply (lit_cesu8_access_correct [32; 8364; 9] [33]); repeat (constructor; [split; reflexivity || discriminate |]); constructor.
Defined.

Lemma lit_convert_utf16_witness :
  lit_utf16_as_cesu8_measure [55357; 56832; 55357] = (2, 9)
  /\ lit_convert_utf16_string_to_cesu8_string [55357; 56832; 55357] 9 = cesu8_encode [55357; 56832; 55357].
Proof.
  apply (lit_convert_utf16_correct [55357; 56832; 55357]). repeat (constructor; [split; reflexivity || discriminate |]). constructor.
Defined.

(** A string of 300 letters: the count that is returned is 300 modulo 256. *)
Lemma lit_convert_cesu8_string_to_utf8_string_witness :
  lit_convert_cesu8_string_to_utf8_string (cesu8_encode (repeat 97 300)) 1000 = Some (repeat 97 300, 44).
Proof.
  assert (H : Forall is_u16 (repeat 97 300)) by (apply Forall_forall; intros x Hx; apply repeat_spec in Hx; subst; split; reflexivity || discriminate).
  refine (eq_trans (proj1 (lit_convert_cesu8_string_to_utf8_string_correct (repeat 97 300) 1000 H)) _). vm_compute. reflexivity.
Defined.

Lemma lit_utf8_roundtrip_witness :
  lit_read_code_point_from_utf8 [240; 159; 152; 128; 33] = Some (4, 128512).
Proof. apply (lit_utf8_roundtrip 128512 [33]). split; discriminate. Defined.

(** The overlong sequence F0 81 80 80, which stands for U+1000; a high and a low surrogate *)
Lemma lit_is_valid_utf8_string_witness :
  lit_is_valid_utf8_string [240; 129; 128; 128] true = true
  /\ lit_read_code_point_from_utf8 [240; 129; 128; 128] = Some (4, 4096) /\ lit_code_point_to_utf8 4096 = [225; 128; 128]
  /\ lit_is_valid_utf8_string [237; 160; 128; 237; 191; 191] false = true /\ lit_is_valid_utf8_string [237; 160; 128; 237; 191; 191] true = false.
Proof.
  split; [| split; [reflexivity | split; [reflexivity | split; [| reflexivity]]]].
  - apply (proj2 (lit_is_valid_utf8_string_characterized [240; 129; 128; 128] true ltac:(repeat (constructor; [split; reflexivity || discriminate |]); constructor))).
    exists [[240; 129; 128; 128]]. split; [constructor; [| constructor]; right; exists 129, 128, 128; repeat split; try reflexivity; discriminate |]. split; [reflexivity |].
    intros _ ([| s [| t before]] & h & l & after & E & _); discriminate.
  - apply (proj2 (lit_is_valid_utf8_string_characterized [237; 160; 128; 237; 191; 191] false ltac:(repeat (constructor; [split; reflexivity || discriminate |]); constructor))).
    exists [lit_code_point_to_utf8 55296; lit_code_point_to_utf8 57343]. split; [repeat (constructor; [left; eexists; split; [| reflexivity]; split; discriminate |]); constructor |]. now split.
Defined.
