(* ===== verification/BigIntParse.v ===== *)
(** * BigInts as text and as 64-bit digits: src/jjs-core/ecma/operations/ecma-bigint.c

    Parsing and printing of BigInts, and the exchange of magnitudes with the
    embedder as arrays of 64-bit digits.  Source text is a CESU-8 byte string
    (LitStrings); an ecma string is its bytes, and the bytes held by a string
    object itself are not counted. *)
From Stdlib Require Import ZArith List Lia Bool.
From S2P Require Import Prelude HeapIface LitChars BigUint BigUintBits BigUintString BigInt BigIntNumber LitStrings.
Import ListNotations.
#[local] Open Scope Z_scope.
#[local] Open Scope heap_scope.

Definition ECMA_BIGINT_PARSE_NO_OPTIONS : Z := 0.
Definition ECMA_BIGINT_PARSE_SET_NEGATIVE : Z := 1.
Definition ECMA_BIGINT_PARSE_DISALLOW_SYNTAX_ERROR : Z := 2.
Definition ECMA_BIGINT_PARSE_DISALLOW_MEMORY_ERROR : Z := 4.
Definition ECMA_BIGINT_PARSE_ALLOW_UNDERSCORE : Z := 8.

(** The result of ecma_bigint_parse_string: a BigInt or an exception, or the
    special values the options ask for; the last one is a read beyond the end *)
Inductive parse_outcome :=
| PARSE_RESULT (result : bigint_outcome)
| PARSE_VALUE_FALSE
| PARSE_VALUE_NULL
| PARSE_OUT_OF_BOUNDS.

(** How the digit loop ends *)
Inductive loop_end :=
| LOOP_SYNTAX_ERROR
| LOOP_RESULT (result_p : option ecma_extended_primitive_t)
| LOOP_OUT_OF_BOUNDS.

(** The loop that skips leading zeros and underscores *)
Fixpoint skip_leading_zeros (allow_underscore : bool) (string : list Z) : list Z :=
  match string with
  | c :: rest =>
      if (c =? LIT_CHAR_0) || ((c =? LIT_CHAR_UNDERSCORE) && allow_underscore)
      then skip_leading_zeros allow_underscore rest else string
  | [] => []
  end.

(** radix, sign and the rest of the string after a prefix *)
Definition parse_prefix (string : list Z) (sign : Z) : Z * Z * list Z :=
  let size := zlength string in
  match string with
  | c0 :: rest =>
      if (3 <=? size) && (c0 =? LIT_CHAR_0) then
        match rest with
        | c1 :: rest' =>
            let radix := lit_char_to_radix c1 in
            if negb (radix =? 10) then (radix, sign, rest') else (radix, sign, string)
        | [] => (10, sign, string)
        end
      else if 2 <=? size then
        if c0 =? LIT_CHAR_PLUS then (10, sign, rest)
        else if c0 =? LIT_CHAR_MINUS then (10, ECMA_BIGINT_SIGN, rest)
        else (10, sign, string)
      else (10, sign, string)
  | [] => (10, sign, string)
  end.

Section Text.
Context {HA : HeapAlloc}.

Fixpoint parse_loop (string : list Z) (radix : Z) (allow_underscore : bool)
    (result_p : option ecma_extended_primitive_t) : M loop_end :=
  match string with
  | [] => ret (LOOP_RESULT result_p)
  | c :: rest =>
      let add_digit digit :=
        if radix <=? digit then
          match result_p with
          | Some r => ecma_deref_bigint r;;; ret LOOP_SYNTAX_ERROR
          | None => ret LOOP_SYNTAX_ERROR
          end
        else
          result_p <- ecma_big_uint_mul_digit result_p radix digit;;
          match result_p with
          | BIGINT_PTR r => parse_loop rest radix allow_underscore (Some r)
          | _ => ret (LOOP_RESULT None)
          end in
      if (LIT_CHAR_0 <=? c) && (c <=? LIT_CHAR_9) then add_digit (c - LIT_CHAR_0)
      else if (c =? LIT_CHAR_UNDERSCORE) && allow_underscore then parse_loop rest radix allow_underscore result_p
      else
        let character := u8 (LEXER_TO_ASCII_LOWERCASE c) in
        if (LIT_CHAR_LOWERCASE_A <=? character) && (character <=? LIT_CHAR_LOWERCASE_F)
        then add_digit (character - (LIT_CHAR_LOWERCASE_A - 10))
        else
          match ecma_string_trim_front string with
          | None => ret LOOP_OUT_OF_BOUNDS
          | Some [] => ret (LOOP_RESULT result_p)
          | Some _ => add_digit radix
          end
  end.

Definition ecma_bigint_parse_string (string : list Z) (options : Z) : M parse_outcome :=
  let sign := if has_option options ECMA_BIGINT_PARSE_SET_NEGATIVE then ECMA_BIGINT_SIGN else 0 in
  let allow_underscore := has_option options ECMA_BIGINT_PARSE_ALLOW_UNDERSCORE in
  match ecma_string_trim_front string with
  | None => ret PARSE_OUT_OF_BOUNDS
  | Some [] => ret (PARSE_RESULT BI_ZERO)
  | Some string =>
      let '(radix, sign, string) := parse_prefix string sign in
      match skip_leading_zeros allow_underscore string with
      | [] => ret (PARSE_RESULT BI_ZERO)
      | string =>
          e <- parse_loop string radix allow_underscore None;;
          ret (match e with
               | LOOP_SYNTAX_ERROR =>
                   if has_option options ECMA_BIGINT_PARSE_DISALLOW_SYNTAX_ERROR then PARSE_VALUE_FALSE
                   else PARSE_RESULT (BI_ERROR ECMA_ERR_STRING_CANNOT_BE_CONVERTED_TO_BIGINT_VALUE)
               | LOOP_RESULT None =>
                   if has_option options ECMA_BIGINT_PARSE_DISALLOW_MEMORY_ERROR then PARSE_VALUE_NULL
                   else PARSE_RESULT (BI_ERROR ECMA_ERR_ALLOCATE_BIGINT_VALUE)
               | LOOP_RESULT (Some r) => PARSE_RESULT (BI_NEW (or_sign r sign))
               | LOOP_OUT_OF_BOUNDS => PARSE_OUT_OF_BOUNDS
               end)
      end
  end.

(** The characters of the new string; [None] after a range error *)
Definition ecma_bigint_to_string (wide : bool) (value : bigint_value) (radix : Z) : M (option (list Z)) :=
  match value with
  | ECMA_BIGINT_ZERO => ret (Some [LIT_CHAR_0])
  | BIGINT bigint_p =>
      string_buffer <- ecma_big_uint_to_string wide bigint_p radix;;
      match string_buffer with
      | Some (Some chars, char_start, char_size) =>
          jmem_heap_free_block char_size;;;
          ret (Some (if negb (sign_of bigint_p =? 0) then LIT_CHAR_MINUS :: chars else chars))
      | _ => ret None
      end
  end.
End Text.

(** ** Numeric literals *)

(** The value of a digit, -1 for other characters *)
Definition digit_of (c : Z) : Z :=
  if (48 <=? c) && (c <=? 57) then c - 48
  else if (65 <=? c) && (c <=? 70) then c - 55
  else if (97 <=? c) && (c <=? 102) then c - 87
  else -1.

Definition literal_char (allow_underscore : bool) (radix c : Z) : Prop :=
  (c = LIT_CHAR_UNDERSCORE /\ allow_underscore = true) \/ 0 <= digit_of c < radix.

(** The number a run of digits denotes, underscores ignored *)
Definition literal_step (radix acc c : Z) : Z := if c =? LIT_CHAR_UNDERSCORE then acc else acc * radix + digit_of c.
Definition literal_value (radix : Z) (cs : list Z) : Z := fold_left (literal_step radix) cs 0.

Definition is_white (u : Z) : Prop := is_u16 u /\ lit_char_is_white_space u = true.

Lemma digit_of_range c : 0 <= digit_of c -> (48 <= c <= 57 /\ digit_of c = c - 48) \/ (65 <= c <= 70 /\ digit_of c = c - 55)
  \/ (97 <= c <= 102 /\ digit_of c = c - 87).
Proof.
  unfold digit_of. destruct ((48 <=? c) && (c <=? 57)) eqn:E1; [zbool; lia |].
  destruct ((65 <=? c) && (c <=? 70)) eqn:E2; [zbool; lia |]. destruct ((97 <=? c) && (c <=? 102)) eqn:E3; [zbool; lia | lia].
Qed.

(** The letter test of the loop *)
Lemma letter_test c : is_u8 c ->
  let character := u8 (LEXER_TO_ASCII_LOWERCASE c) in
  (LIT_CHAR_LOWERCASE_A <=? character) && (character <=? LIT_CHAR_LOWERCASE_F)
    = ((65 <=? c) && (c <=? 70)) || ((97 <=? c) && (c <=? 102))
  /\ (((65 <=? c) && (c <=? 70)) || ((97 <=? c) && (c <=? 102)) = true -> character - (LIT_CHAR_LOWERCASE_A - 10) = digit_of c).
Proof.
  intros Hc.
  pose proof (bytes_all (fun c => let character := u8 (LEXER_TO_ASCII_LOWERCASE c) in
    Bool.eqb ((LIT_CHAR_LOWERCASE_A <=? character) && (character <=? LIT_CHAR_LOWERCASE_F)) (((65 <=? c) && (c <=? 70)) || ((97 <=? c) && (c <=? 102)))
    && (negb (((65 <=? c) && (c <=? 70)) || ((97 <=? c) && (c <=? 102))) || (character - (LIT_CHAR_LOWERCASE_A - 10) =? digit_of c)))
    ltac:(vm_compute; reflexivity) c Hc) as H. cbv beta zeta in H. apply andb_true_iff in H as [H1 H2]. apply eqb_prop in H1.
  cbv zeta. split; [assumption |]. intros E. rewrite E in H2. cbn [negb orb] in H2. now apply Z.eqb_eq in H2.
Qed.

Section Loop.
Context {HA : HeapAlloc}.

(** What an accumulator of the loop is worth and how many bytes it holds *)
Definition acc_ok (acc : option ecma_extended_primitive_t) : Prop :=
  match acc with Some v => big_uint_wf v /\ big_uint_fresh v | None => True end.
Definition acc_value (acc : option ecma_extended_primitive_t) : Z := match acc with Some v => big_uint_value v | None => 0 end.
Definition acc_bytes (acc : option ecma_extended_primitive_t) : Z := match acc with Some v => primitive_bytes (bigint_digits v) | None => 0 end.

Definition loop_ok (x : Z) (e : loop_end) (bytes : Z) : Prop :=
  match e with
  | LOOP_RESULT (Some p) => big_uint_result x (BIGINT_PTR p) bytes
  | LOOP_RESULT None => big_uint_result x BIGINT_NULL bytes
  | _ => False
  end.

Lemma digit_step c rest radix allow acc : is_u8 c -> 0 <= digit_of c < radix ->
  parse_loop (c :: rest) radix allow acc =
    (result_p <- ecma_big_uint_mul_digit acc radix (digit_of c);;
     match result_p with
     | BIGINT_PTR r => parse_loop rest radix allow (Some r)
     | _ => ret (LOOP_RESULT None)
     end).
Proof.
  intros Hc Hd. cbn [parse_loop]. destruct (letter_test c Hc) as [L1 L2]. cbv zeta in L1, L2 |- *. unfold LIT_CHAR_0, LIT_CHAR_9, LIT_CHAR_UNDERSCORE in *.
  destruct (digit_of_range c ltac:(lia)) as [[Hr E]|H].
  - rewrite (proj2 (Z.leb_le 48 c)), (proj2 (Z.leb_le c 57)) by lia. cbn [andb]. rewrite <- E, (proj2 (Z.leb_gt radix (digit_of c))) by lia. reflexivity.
  - replace ((48 <=? c) && (c <=? 57)) with false by (symmetry; apply andb_false_iff; rewrite !Z.leb_gt; lia).
    rewrite (proj2 (Z.eqb_neq c 95)) by lia. cbn [andb]. rewrite L1.
    assert (Et : (65 <=? c) && (c <=? 70) || (97 <=? c) && (c <=? 102) = true) by (apply orb_true_iff; rewrite !andb_true_iff, !Z.leb_le; lia).
    rewrite Et. specialize (L2 Et). rewrite L2, (proj2 (Z.leb_gt radix (digit_of c))) by lia. reflexivity.
Qed.

Lemma underscore_step rest radix acc : parse_loop (LIT_CHAR_UNDERSCORE :: rest) radix true acc = parse_loop rest radix true acc.
Proof. reflexivity. Qed.
End Loop.

(** ** White space around a literal *)

Lemma white_first u rest c tl : is_white u -> lit_code_unit_to_utf8 u ++ rest = c :: tl ->
  is_u8 c /\ (9 <= c <= 32 \/ 192 <= c).
Proof.
  intros [Hu Hw] E. pose proof (unit_bytes_u8 u Hu) as Hb. rewrite code_unit_bytes in E by assumption.
  unfold unit_bytes, is_u16 in *. destruct (Z.ltb_spec u 128).
  - apply (f_equal (hd 0)) in E. cbn in E. subst c. unfold lit_char_is_white_space in Hw. rewrite (proj2 (Z.leb_le u 127)) in Hw by lia.
    unfold LIT_CHAR_SP, LIT_CHAR_TAB, LIT_CHAR_CR in Hw. apply orb_true_iff in Hw as [Hw|Hw]; zbool; unfold is_u8; lia.
  - destruct (Z.ltb_spec u 2048); apply (f_equal (hd 0)) in E; cbn [hd app] in E; subst c;
      apply Forall_cons_iff in Hb as [Hb _]; (split; [assumption |]); right; Z.div_mod_to_equations; lia.
Qed.

Lemma drop_all_white ws units : Forall is_white ws -> drop_white_space (ws ++ units) = drop_white_space units.
Proof. induction 1 as [|u ws [_ Hw] Hws IH]; [reflexivity |]. cbn. now rewrite Hw. Qed.

Lemma white_units ws : Forall is_white ws -> Forall is_u16 ws.
Proof. intros H. eapply Forall_impl; [| exact H]. now intros u [Hu _]. Qed.

Section Digits.
Context {HA : HeapAlloc}.

Lemma white_end ws radix allow acc : Forall is_white ws ->
  parse_loop (cesu8_encode ws) radix allow acc = ret (LOOP_RESULT acc).
Proof.
  intros Hw. destruct ws as [|u ws]; [reflexivity |]. pose proof Hw as Hall. apply Forall_cons_iff in Hw as [Hu Hws].
  rewrite cesu8_encode_cons. destruct (encode_cons_view u ws) as (c & tl & E). destruct (white_first u _ c tl Hu E) as [Hc Hr].
  assert (Et : ecma_string_trim_front (c :: tl) = Some []).
  { rewrite <- E, <- cesu8_encode_cons. unfold ecma_string_trim_front.
    rewrite trim_front_encode by (now apply white_units || apply encode_length_ge).
    rewrite <- (app_nil_r (u :: ws)). now rewrite drop_all_white. }
  rewrite E. cbn [parse_loop]. destruct (letter_test c Hc) as [L _]. cbv zeta in L |- *. rewrite L, Et.
  unfold LIT_CHAR_0, LIT_CHAR_9, LIT_CHAR_UNDERSCORE, is_u8 in *.
  replace ((48 <=? c) && (c <=? 57)) with false by (symmetry; apply andb_false_iff; rewrite !Z.leb_gt; lia).
  rewrite (proj2 (Z.eqb_neq c 95)) by lia. cbn [andb].
  replace ((65 <=? c) && (c <=? 70) || (97 <=? c) && (c <=? 102)) with false; [reflexivity |].
  symmetry. apply orb_false_iff. rewrite !andb_false_iff, !Z.leb_gt. lia.
Qed.

Lemma literal_step_mono radix cs allow : 2 <= radix -> Forall (literal_char allow radix) cs -> forall acc,
  0 <= acc -> acc <= fold_left (literal_step radix) cs acc.
Proof.
  intros Hr. induction 1 as [|c cs Hc Hcs IH]; intros acc Ha; [cbn; lia |]. cbn [fold_left].
  assert (H : acc <= literal_step radix acc c).
  { unfold literal_step. destruct (Z.eqb_spec c LIT_CHAR_UNDERSCORE); [lia |]. destruct Hc as [[? _]|Hd]; [lia | nia]. }
  specialize (IH (literal_step radix acc c)). lia.
Qed.

Lemma digit_not_underscore c : 0 <= digit_of c -> c <> LIT_CHAR_UNDERSCORE /\ is_u8 c.
Proof. intros H. unfold LIT_CHAR_UNDERSCORE, is_u8. destruct (digit_of_range c H) as [|[|]]; lia. Qed.

(** The loop over a run of digits that is followed by white space *)
Lemma wp_parse_loop radix allow ws : 2 <= radix <= 16 -> Forall is_white ws ->
  forall cs acc, Forall (literal_char allow radix) cs -> acc_ok acc ->
  (acc = None -> exists c cs', cs = c :: cs' /\ 0 < digit_of c) ->
  wp (parse_loop (cs ++ cesu8_encode ws) radix allow acc)
     (fun e held => loop_ok (fold_left (literal_step radix) cs (acc_value acc)) e (held + acc_bytes acc)).
Proof.
  intros Hr Hw. induction cs as [|c cs IH]; intros acc Hcs Hacc Hn.
  - destruct acc as [v|]; [| destruct (Hn eq_refl) as (c & cs' & E & _); discriminate].
    cbn [app fold_left acc_value acc_bytes]. rewrite white_end by assumption. wp_step. rewrite Z.add_0_l.
    destruct Hacc as [Hv Hf]. cbn. splits; try assumption; try reflexivity; apply Hf.
  - apply Forall_cons_iff in Hcs as [Hc Hcs]. cbn [app fold_left].
    assert (Ha0 : 0 <= acc_value acc) by (destruct acc as [v|]; [apply Z.lt_le_incl, wf_value_pos, Hacc | reflexivity]).
    destruct Hc as [[-> Hu]|Hd].
    + subst allow. rewrite underscore_step. unfold literal_step at 2. rewrite Z.eqb_refl. apply IH; try assumption.
      intros E. destruct (Hn E) as (c' & cs' & E' & Hpos). exfalso. injection E' as <- _. vm_compute in Hpos. discriminate.
    + destruct (digit_not_underscore c ltac:(lia)) as [Hnu Hu8]. rewrite digit_step by assumption.
      set (x := acc_value acc * radix + digit_of c) in *.
      assert (Es : literal_step radix (acc_value acc) c = x) by (unfold literal_step; now rewrite (proj2 (Z.eqb_neq _ _) Hnu)). rewrite Es.
      assert (Hmul : wp (ecma_big_uint_mul_digit acc radix (digit_of c)) (fun res held => big_uint_result x res (held + acc_bytes acc))).
      { destruct acc as [v|]; cbn [acc_value acc_bytes] in *.
        - apply wp_big_uint_mul_digit; try apply Hacc; unfold is_u32; lia.
        - destruct (Hn eq_refl) as (c' & cs' & E & Hpos). injection E as <- <-. unfold x.
          eapply wp_mono; [apply (wp_big_uint_mul_digit_null radix); lia |]. cbn. intros res held. now rewrite Z.add_0_r. }
      assert (Hx : 0 < x).
      { unfold x. destruct acc as [v|]; cbn [acc_value]; [pose proof (wf_value_pos v (proj1 Hacc)); nia |].
        destruct (Hn eq_refl) as (c' & cs' & E & Hpos). injection E as <- <-. lia. }
      wp_step. eapply wp_mono; [exact Hmul |]. cbv beta. intros [| |r] held Hres.
      * wp_step. cbn [loop_ok big_uint_result] in *. split; [lia |]. intros Ha. destruct Hres as [_ Hbig]. specialize (Hbig Ha).
        unfold big_uint_too_large in *. pose proof (literal_step_mono radix cs allow ltac:(lia) Hcs x ltac:(lia)). lia.
      * cbn in Hres. lia.
      * cbn [big_uint_result] in Hres. destruct Hres as (Hv & Hwf & Hf & Hh).
        eapply wp_mono; [apply (IH (Some r)); [assumption | now split | discriminate] |]. cbv beta. cbn [acc_value acc_bytes]. rewrite Hv, <- Hh.
        intros e d. now replace (held + d + acc_bytes acc) with (d + (held + acc_bytes acc)) by lia.
Qed.
End Digits.

(** ** The prefix of a literal *)

Inductive literal_prefix :=
| PREFIX_NONE
| PREFIX_PLUS
| PREFIX_MINUS
| PREFIX_RADIX (letter : Z).

Definition prefix_chars (p : literal_prefix) : list Z :=
  match p with
  | PREFIX_NONE => []
  | PREFIX_PLUS => [LIT_CHAR_PLUS]
  | PREFIX_MINUS => [LIT_CHAR_MINUS]
  | PREFIX_RADIX letter => [LIT_CHAR_0; letter]
  end.

Definition prefix_radix (p : literal_prefix) : Z :=
  match p with PREFIX_RADIX letter => lit_char_to_radix letter | _ => 10 end.

(** The letter is one of x, o and b in either case *)
Definition prefix_ok (p : literal_prefix) : Prop :=
  match p with PREFIX_RADIX letter => 0 <= letter < 128 /\ lit_char_to_radix letter <> 10 | _ => True end.

Lemma prefix_radix_range p : 2 <= prefix_radix p <= 16.
Proof.
  destruct p; cbn; try lia. unfold lit_char_to_radix. destruct (_ =? _); [lia |]. destruct (_ =? _); [lia |]. destruct (_ =? _); lia.
Qed.

Lemma not_radix_letter c : is_u8 c -> 48 <= c <= 57 \/ c = 95 \/ 9 <= c <= 32 \/ 192 <= c -> lit_char_to_radix c = 10.
Proof.
  intros Hc H.
  pose proof (bytes_all (fun c => negb (((48 <=? c) && (c <=? 57)) || (c =? 95) || ((9 <=? c) && (c <=? 32)) || (192 <=? c)) || (lit_char_to_radix c =? 10))
    ltac:(vm_compute; reflexivity) c Hc) as T. cbv beta in T. 
  assert (E : (((48 <=? c) && (c <=? 57)) || (c =? 95) || ((9 <=? c) && (c <=? 32)) || (192 <=? c)) = true)
    by (rewrite !orb_true_iff, !andb_true_iff, !Z.leb_le, Z.eqb_eq; lia).
  rewrite E in T. now apply Z.eqb_eq in T.
Qed.

Lemma decimal_char allow c : literal_char allow 10 c -> 48 <= c <= 57 \/ c = 95.
Proof. intros [[-> _]|H]; [now right |]. destruct (digit_of_range c ltac:(lia)) as [|[|]]; lia. Qed.

(** The second character of a decimal literal is no radix letter *)
Lemma second_char allow cs ws c tl : Forall (literal_char allow 10) cs -> Forall is_white ws ->
  cs ++ cesu8_encode ws = c :: tl -> lit_char_to_radix c = 10.
Proof.
  intros Hcs Hw E. destruct Hcs as [|d cs Hd Hcs].
  - destruct Hw as [|u ws Hu Hw]; [discriminate |]. cbn [app] in E. rewrite cesu8_encode_cons in E.
    destruct (white_first u _ c tl Hu E) as [Hc Hr]. apply not_radix_letter; [assumption | lia].
  - injection E as -> _. pose proof (decimal_char allow c Hd). apply not_radix_letter; [unfold is_u8 |]; lia.
Qed.

Lemma parse_prefix_spec p cs ws allow sign : prefix_ok p -> cs <> [] -> Forall (literal_char allow (prefix_radix p)) cs -> Forall is_white ws ->
  parse_prefix (prefix_chars p ++ cs ++ cesu8_encode ws) sign
  = (prefix_radix p, match p with PREFIX_MINUS => ECMA_BIGINT_SIGN | _ => sign end, cs ++ cesu8_encode ws).
Proof.
  intros Hp Hne Hcs Hw. destruct cs as [|c cs]; [easy |]. pose proof (zlength_nonneg (cs ++ cesu8_encode ws)) as Hz.
  destruct p as [| | |letter]; cbn [prefix_chars prefix_radix app] in *; unfold parse_prefix.
  - apply Forall_cons_iff in Hcs as [Hc Hcs]. pose proof (decimal_char allow c Hc) as Hr. rewrite zlength_cons.
    unfold LIT_CHAR_PLUS, LIT_CHAR_MINUS, LIT_CHAR_0.
    destruct (_ && _) eqn:E; zbool.
    + destruct (cs ++ cesu8_encode ws) as [|c1 tl] eqn:E1; [reflexivity |].
      rewrite (second_char allow cs ws c1 tl Hcs Hw E1). reflexivity.
    + rewrite (proj2 (Z.eqb_neq c 43)), (proj2 (Z.eqb_neq c 45)) by lia. now destruct (2 <=? _).
  - rewrite !zlength_cons. change (LIT_CHAR_PLUS =? LIT_CHAR_0) with false. rewrite andb_false_r, (proj2 (Z.leb_le 2 _)) by lia. reflexivity.
  - rewrite !zlength_cons. change (LIT_CHAR_MINUS =? LIT_CHAR_0) with false. rewrite andb_false_r, (proj2 (Z.leb_le 2 _)) by lia. reflexivity.
  - rewrite !zlength_cons, (proj2 (Z.leb_le 3 _)) by lia. cbn [andb Z.eqb LIT_CHAR_0 Pos.eqb]. change (LIT_CHAR_0 =? LIT_CHAR_0) with true. cbn [andb].
    now rewrite (proj2 (Z.eqb_neq _ _) (proj2 Hp)).
Qed.

(** Skipping leading zeros keeps the value and leaves a digit in front *)
Lemma skip_zeros_spec allow radix cs w : Forall (literal_char allow radix) cs ->
  (match w with [] => True | c :: _ => c <> LIT_CHAR_0 /\ c <> LIT_CHAR_UNDERSCORE end) ->
  exists cs', skip_leading_zeros allow (cs ++ w) = cs' ++ w /\ Forall (literal_char allow radix) cs'
    /\ literal_value radix cs' = literal_value radix cs
    /\ (cs' = [] \/ exists c tl, cs' = c :: tl /\ 0 < digit_of c).
Proof.
  intros Hcs Hw. induction Hcs as [|c cs Hc Hcs IH].
  - exists []. splits; auto. destruct w as [|c w]; [reflexivity |]. cbn. destruct Hw as [H0 H1].
    now rewrite (proj2 (Z.eqb_neq _ _) H0), (proj2 (Z.eqb_neq _ _) H1).
  - cbn [app skip_leading_zeros]. destruct (_ || _) eqn:E.
    + destruct IH as (cs' & E1 & H1 & V & Hh). exists cs'. splits; try assumption. rewrite V. unfold literal_value. cbn [fold_left].
      f_equal. unfold literal_step. apply orb_true_iff in E as [E|E]; zbool; subst c; reflexivity.
    + exists (c :: cs). splits; [reflexivity | now constructor | reflexivity |]. right. exists c, cs. split; [reflexivity |].
      apply orb_false_iff in E as [E0 E1]. destruct Hc as [[-> Ha]|Hd]; [rewrite Ha in E1; discriminate |].
      zbool. unfold LIT_CHAR_0 in E0. destruct (digit_of_range c ltac:(lia)) as [|[|]]; lia.
Qed.

(** ** Literals *)

Lemma encode_ascii cs : Forall (fun c => 0 <= c < 128) cs -> cesu8_encode cs = cs /\ Forall is_u16 cs.
Proof.
  induction 1 as [|c cs Hc Hcs [IH1 IH2]]; [split; constructor |]. assert (Hu : is_u16 c) by (unfold is_u16; lia). split; [| now constructor].
  rewrite cesu8_encode_cons, IH1, code_unit_bytes by assumption. unfold unit_bytes. now rewrite (proj2 (Z.ltb_lt c 128)) by lia.
Qed.

Lemma literal_char_ascii allow radix c : literal_char allow radix c -> 48 <= c < 128.
Proof. intros [[-> _]|H]; [unfold LIT_CHAR_UNDERSCORE; lia |]. destruct (digit_of_range c ltac:(lia)) as [|[|]]; lia. Qed.

Lemma not_white c : 33 <= c < 128 -> lit_char_is_white_space c = false.
Proof.
  intros H. unfold lit_char_is_white_space, LIT_CHAR_SP, LIT_CHAR_TAB, LIT_CHAR_CR. rewrite (proj2 (Z.leb_le c 127)) by lia.
  rewrite (proj2 (Z.eqb_neq c 32)), (proj2 (Z.leb_gt c 13)) by lia. apply andb_false_r.
Qed.

Lemma core_ascii p allow cs : prefix_ok p -> Forall (literal_char allow (prefix_radix p)) cs ->
  Forall (fun c => 0 <= c < 128) (prefix_chars p ++ cs).
Proof.
  intros Hp Hcs. apply Forall_app. split.
  - destruct p; cbn; repeat (apply Forall_cons; [unfold LIT_CHAR_PLUS, LIT_CHAR_MINUS, LIT_CHAR_0; cbn in Hp; lia |]); constructor.
  - eapply Forall_impl; [| exact Hcs]. intros c Hc. pose proof (literal_char_ascii _ _ _ Hc). lia.
Qed.

(** White space in front of a literal is trimmed *)
Lemma trim_literal ws1 p allow cs ws2 : Forall is_white ws1 -> Forall is_white ws2 -> prefix_ok p -> cs <> [] ->
  Forall (literal_char allow (prefix_radix p)) cs ->
  ecma_string_trim_front (cesu8_encode (ws1 ++ (prefix_chars p ++ cs) ++ ws2)) = Some (prefix_chars p ++ cs ++ cesu8_encode ws2).
Proof.
  intros H1 H2 Hp Hne Hcs. pose proof (core_ascii p allow cs Hp Hcs) as Ha. destruct (encode_ascii _ Ha) as [Ee Hu].
  unfold ecma_string_trim_front. rewrite trim_front_encode.
  - rewrite drop_all_white by assumption. destruct (prefix_chars p ++ cs) as [|c core] eqn:E; [now apply app_eq_nil in E |].
    assert (Hc : 33 <= c < 128).
    { destruct p; cbn [prefix_chars app] in E.
      - subst cs. apply Forall_cons_iff in Hcs as [Hc _]. pose proof (literal_char_ascii _ _ _ Hc). lia.
      - injection E as <- _. unfold LIT_CHAR_PLUS. lia.
      - injection E as <- _. unfold LIT_CHAR_MINUS. lia.
      - injection E as <- _. unfold LIT_CHAR_0. lia. }
    cbn [app drop_white_space]. rewrite not_white by assumption. change (c :: core ++ ws2) with ((c :: core) ++ ws2).
    rewrite cesu8_encode_app, Ee, <- E, app_assoc. reflexivity.
  - apply Forall_app. split; [now apply white_units |]. apply Forall_app. split; [assumption | now apply white_units].
  - apply encode_length_ge.
Qed.

(** The integer a literal denotes *)
Definition literal_int (options : Z) (p : literal_prefix) (cs : list Z) : Z :=
  let magnitude := literal_value (prefix_radix p) cs in
  match p with
  | PREFIX_MINUS => - magnitude
  | _ => if has_option options ECMA_BIGINT_PARSE_SET_NEGATIVE then - magnitude else magnitude
  end.

Section Parsing.
Context {HA : HeapAlloc}.

(** The outcome of a parse whose result is [x]; a memory error is [spurious]
    when the number fits *)
Definition parse_result (x : Z) (spurious : bool) (options : Z) (o : parse_outcome) (held : Z) : Prop :=
  match o with
  | PARSE_RESULT (BI_ERROR ECMA_ERR_ALLOCATE_BIGINT_VALUE) =>
      has_option options ECMA_BIGINT_PARSE_DISALLOW_MEMORY_ERROR = false /\ held = 0
      /\ (spurious = true \/ (heap_ample -> int_too_large x))
  | PARSE_VALUE_NULL =>
      has_option options ECMA_BIGINT_PARSE_DISALLOW_MEMORY_ERROR = true /\ held = 0
      /\ (spurious = true \/ (heap_ample -> int_too_large x))
  | PARSE_RESULT r => spurious = false /\ bigint_result x r held
  | _ => False
  end.

Lemma parsed_error x spurious options held : held = 0 -> spurious = true \/ (heap_ample -> int_too_large x) ->
  parse_result x spurious options
    (if has_option options ECMA_BIGINT_PARSE_DISALLOW_MEMORY_ERROR then PARSE_VALUE_NULL
     else PARSE_RESULT (BI_ERROR ECMA_ERR_ALLOCATE_BIGINT_VALUE)) held.
Proof. intros. now destruct (has_option options ECMA_BIGINT_PARSE_DISALLOW_MEMORY_ERROR) eqn:E; cbn. Qed.

Lemma wp_parse_literal ws1 p cs ws2 options :
  Forall is_white ws1 -> Forall is_white ws2 -> prefix_ok p -> cs <> [] ->
  Forall (literal_char (has_option options ECMA_BIGINT_PARSE_ALLOW_UNDERSCORE) (prefix_radix p)) cs ->
  let x := literal_int options p cs in
  wp (ecma_bigint_parse_string (cesu8_encode (ws1 ++ (prefix_chars p ++ cs) ++ ws2)) options)
     (parse_result x ((x =? 0) && negb (zlength ws2 =? 0)) options).
Proof.
  intros H1 H2 Hp Hne Hcs x. unfold ecma_bigint_parse_string. rewrite (trim_literal ws1 p _ cs ws2 H1 H2 Hp Hne Hcs).
  set (allow := has_option options ECMA_BIGINT_PARSE_ALLOW_UNDERSCORE) in *.
  set (sign0 := if has_option options ECMA_BIGINT_PARSE_SET_NEGATIVE then ECMA_BIGINT_SIGN else 0).
  destruct (prefix_chars p ++ cs ++ cesu8_encode ws2) as [|c tl] eqn:Es.
  { apply app_eq_nil in Es as [_ Es]. now apply app_eq_nil in Es. }
  rewrite <- Es, (parse_prefix_spec p cs ws2 allow) by assumption. cbv zeta.
  set (sign := match p with PREFIX_MINUS => ECMA_BIGINT_SIGN | _ => sign0 end).
  assert (Hx : x = if sign =? 0 then literal_value (prefix_radix p) cs else - literal_value (prefix_radix p) cs).
  { unfold x, literal_int, sign, sign0. destruct p, (has_option options ECMA_BIGINT_PARSE_SET_NEGATIVE); reflexivity. }
  assert (Hsign : 0 <= sign <= 1) by (unfold sign, sign0, ECMA_BIGINT_SIGN; destruct p, (has_option options ECMA_BIGINT_PARSE_SET_NEGATIVE); lia).
  assert (Hw : match cesu8_encode ws2 with [] => True | d :: _ => d <> LIT_CHAR_0 /\ d <> LIT_CHAR_UNDERSCORE end).
  { destruct ws2 as [|u ws2]; [exact I |]. pose proof (Forall_inv H2) as Hu. rewrite cesu8_encode_cons.
    destruct (encode_cons_view u ws2) as (d & rest & E). rewrite E. destruct (white_first u _ d rest Hu E) as [_ Hd].
    unfold LIT_CHAR_0, LIT_CHAR_UNDERSCORE. lia. }
  destruct (skip_zeros_spec allow (prefix_radix p) cs (cesu8_encode ws2) Hcs Hw) as (cs' & -> & Hcs' & V & Hhd).
  destruct Hhd as [->|(d & tl' & -> & Hd)].
  - assert (Hv : literal_value (prefix_radix p) cs = 0) by (rewrite <- V; reflexivity). rewrite Hv in Hx.
    assert (E0 : x = 0) by (destruct (sign =? 0); lia). rewrite E0. cbn [app Z.eqb andb].
    destruct ws2 as [|u ws2]; [change (cesu8_encode []) with (@nil Z); cbv iota; wp_step; cbn; now split |].
    rewrite cesu8_encode_cons. destruct (encode_cons_view u ws2) as (e & rest & E). rewrite E. cbv iota.
    rewrite <- E, <- cesu8_encode_cons. wp_step. rewrite white_end by assumption. wp_step. cbv beta iota. wp_step. rewrite zlength_cons. pose proof (zlength_nonneg ws2).
    rewrite (proj2 (Z.eqb_neq _ 0)) by lia. cbn [negb]. apply parsed_error; auto.
  - change ((d :: tl') ++ cesu8_encode ws2) with (d :: tl' ++ cesu8_encode ws2). cbv iota.
    change (d :: tl' ++ cesu8_encode ws2) with ((d :: tl') ++ cesu8_encode ws2). wp_step.
    eapply wp_mono; [apply (wp_parse_loop (prefix_radix p) allow ws2 (prefix_radix_range p) H2 (d :: tl') None); [assumption | exact I |]|].
    { intros _. eauto. }
    cbv beta. cbn [acc_value acc_bytes]. change (fold_left _ (d :: tl') 0) with (literal_value (prefix_radix p) (d :: tl')). rewrite V.
    intros e held. rewrite Z.add_0_r. intros He. wp_step. rewrite Z.add_0_r. destruct e as [|[r|]|]; cbn [loop_ok] in He; try contradiction.
    + assert (Hpos : 0 < literal_value (prefix_radix p) cs) by (destruct He as (<- & W & _); now apply wf_value_pos).
      assert (Hx0 : x <> 0) by (destruct (sign =? 0); lia). rewrite (proj2 (Z.eqb_neq x 0) Hx0). cbn [andb].
      split; [reflexivity |]. exact (make_value_result _ (BIGINT_PTR r) held sign x Hpos Hsign He Hx).
    + destruct He as [-> Hbig]. apply parsed_error; [reflexivity | right]. intros Ha. specialize (Hbig Ha). unfold int_too_large.
      pose proof (literal_step_mono (prefix_radix p) cs allow ltac:(pose proof (prefix_radix_range p); lia) Hcs 0 ltac:(lia)) as Hnn.
      fold (literal_value (prefix_radix p) cs) in Hnn. now replace (Z.abs x) with (literal_value (prefix_radix p) cs) by (destruct (sign =? 0); lia).
Qed.
End Parsing.

(** ** Printing and parsing again *)

Lemma radix_char_literal cs : Forall (is_radix_char 10) cs -> Forall (literal_char false 10) cs /\ literal_value 10 cs = radix_value 10 cs.
Proof.
  intros H. assert (E : forall c, is_radix_char 10 c -> digit_of c = char_digit c /\ 0 <= digit_of c < 10 /\ c <> LIT_CHAR_UNDERSCORE).
  { intros c [Hr Hd]. unfold digit_of, char_digit, LIT_CHAR_UNDERSCORE, LIT_CHAR_0, LIT_CHAR_LOWERCASE_A in *.
    destruct (Z.ltb_spec c 58); [| lia]. rewrite (proj2 (Z.leb_le 48 c)), (proj2 (Z.leb_le c 57)) by lia. cbn [andb]. lia. }
  split; [eapply Forall_impl; [| exact H]; intros c Hc; right; apply (E c Hc) |].
  unfold literal_value, radix_value. generalize 0. induction H as [|c cs Hc Hcs IH]; intros acc; [reflexivity |]. cbn [fold_left].
  rewrite IH. f_equal. unfold literal_step. destruct (E c Hc) as (-> & _ & Hn). now rewrite (proj2 (Z.eqb_neq _ _) Hn).
Qed.

Section RoundTrip.
Context {HA : HeapAlloc}.

(** Print a BigInt in decimal and parse the text *)
Definition print_and_parse (wide : bool) (v : bigint_value) : M (option parse_outcome) :=
  text <- ecma_bigint_to_string wide v 10;;
  match text with
  | None => ret None
  | Some chars => o <- ecma_bigint_parse_string chars ECMA_BIGINT_PARSE_NO_OPTIONS;; ret (Some o)
  end.

Definition reparsed (v : bigint_value) (r : option parse_outcome) (held : Z) : Prop :=
  match r with
  | None => ~ heap_ample /\ held = 0
  | Some (PARSE_RESULT o) => bigint_result (bigint_to_Z v) o held
  | Some _ => False
  end.

(** Parsing a printed text without options *)
Lemma wp_reparse p cs x : prefix_ok p -> cs <> [] -> Forall (literal_char false (prefix_radix p)) cs ->
  x = literal_int ECMA_BIGINT_PARSE_NO_OPTIONS p cs ->
  wp (o <- ecma_bigint_parse_string (prefix_chars p ++ cs) ECMA_BIGINT_PARSE_NO_OPTIONS;; ret (Some o))
     (fun r held => match r with Some (PARSE_RESULT o) => bigint_result x o held | _ => False end).
Proof.
  intros Hp Hne Hcs ->. pose proof (wp_parse_literal [] p cs [] ECMA_BIGINT_PARSE_NO_OPTIONS (Forall_nil _) (Forall_nil _) Hp Hne Hcs) as W.
  cbn [app] in W. rewrite app_nil_r in W. rewrite (proj1 (encode_ascii _ (core_ascii p false cs Hp Hcs))) in W.
  wp_step. eapply wp_mono; [exact W |]. cbv beta. intros o held. change (zlength (@nil Z) =? 0) with true. cbn [negb]. rewrite andb_false_r.
  intros Ho. wp_step. rewrite Z.add_0_r. destruct o as [o| | |]; cbn [parse_result] in Ho; try contradiction.
  - destruct o as [| | |e|]; try (exact (proj2 Ho)). destruct e; try (exact (proj2 Ho)).
    destruct Ho as (_ & -> & [Hs|Hs]); [discriminate | split; [reflexivity | exact Hs]].
  - destruct Ho as (Ho & _). discriminate.
Qed.

Lemma wp_print_and_parse wide v : bigint_ok v -> wp (print_and_parse wide v) (reparsed v).
Proof.
  intros Hv. unfold print_and_parse. wp_step. destruct v as [|p]; cbn [ecma_bigint_to_string].
  - wp_step. eapply wp_mono; [apply (wp_reparse PREFIX_NONE [LIT_CHAR_0] 0); try easy |].
    + constructor; [right; vm_compute; split; congruence | constructor].
    + intros r held H. rewrite Z.add_0_l. destruct r as [[]|]; exact H || contradiction.
  - pose proof Hv as [W _]. wp_step. eapply wp_mono; [apply (ecma_big_uint_to_string_spec wide p 10 W); lia |].
    intros [[[chars start] size]|] held Hp; cbn [printed] in Hp.
    2: { wp_step. wp_step. destruct Hp as [Ha ->]. cbn. now split. }
    destruct Hp as (cs & -> & Vc & Hc & Hhd & _ & _ & ->). destruct (radix_char_literal cs Hc) as [Hl Vl].
    assert (Hne : cs <> []) by (intros ->; cbn in Hhd; now apply Hhd).
    wp_step. wp_step. cbv beta. wp_step. destruct (bigint_int_cases p Hv) as [[S I]|[S I]]; rewrite S; cbn [Z.eqb negb].
    + eapply wp_mono; [apply (wp_reparse PREFIX_NONE cs (bigint_int p)); try assumption; try easy; rewrite I, <- Vc, <- Vl; reflexivity |].
      intros r d H. held_is d; [lia |]. destruct r as [[]|]; exact H || contradiction.
    + eapply wp_mono; [apply (wp_reparse PREFIX_MINUS cs (bigint_int p)); try assumption; try easy; rewrite I, <- Vc, <- Vl; reflexivity |].
      intros r d H. held_is d; [lia |]. destruct r as [[]|]; exact H || contradiction.
Qed.
End RoundTrip.

(** ** 64-bit digits *)

(** The outcome of ecma_bigint_create_from_digits: a value, or digits written
    beyond the end of the new block *)
Inductive create_outcome :=
| CREATED (result : bigint_outcome)
| BUFFER_OVERFLOW.

(** The two 32-bit digits of a 64-bit digit, as they are written to result_p *)
Definition split_digit (digit : Z) : list Z := [u32 digit; u32 (Z.shiftr digit 32)].

Section Digits64.
Context {HA : HeapAlloc}.

Definition ecma_bigint_create_from_digits (digits : list Z) (sign : bool) : M create_outcome :=
  let digits := rev (skip_zero_digits (rev digits)) in
  match digits with
  | [] => ret (CREATED BI_ZERO)
  | _ =>
      let size := zlength digits in
      let size := if size <? ECMA_BIGINT_MAX_SIZE then u32 (size * 8) else size in
      let size := if Z.shiftr (last digits 0) 32 =? 0 then u32 (size - sizeof_digit) else size in
      result_value_p <- ecma_bigint_create size;;
      ret (match result_value_p with
           | None => CREATED (BI_ERROR ECMA_ERR_ALLOCATE_BIGINT_VALUE)
           | Some r =>
               let written := flat_map split_digit digits in
               if ECMA_BIGINT_GET_BYTE_SIZE size <? sizeof_digit * zlength written then BUFFER_OVERFLOW
               else
                 let r := if sign then or_sign r ECMA_BIGINT_SIGN else r in
                 CREATED (BI_NEW (set_digits r (firstn (in_digits size) written)))
           end)
  end.
End Digits64.

Definition ecma_bigint_get_size_in_digits (value : bigint_value) : Z :=
  match value with
  | ECMA_BIGINT_ZERO => 0
  | BIGINT value_p => u32 (ECMA_BIGINT_GET_SIZE value_p + sizeof_digit) / 8
  end.

(** The first loop: pairs of digits into [count] 64-bit digits; the source that is left *)
Fixpoint join_digits (count : nat) (source : list Z) : list Z * list Z :=
  match count, source with
  | S count', low :: high :: source' =>
      let (ds, rest) := join_digits count' source' in (Z.lor low (u64 (Z.shiftl high 32)) :: ds, rest)
  | _, _ => ([], source)
  end.

(** The digits written to the buffer, and the sign *)
Definition ecma_bigint_get_digits_and_sign (value : bigint_value) (size : Z) : list Z * bool :=
  match value with
  | ECMA_BIGINT_ZERO => (repeat 0 (Z.to_nat size), false)
  | BIGINT value_p =>
      let sign := negb (sign_of value_p =? 0) in
      let bigint_size := ECMA_BIGINT_GET_SIZE value_p in
      let copy_size := bigint_size / 8 in
      let copy_size := if size <? copy_size then size else copy_size in
      let (digits, source) := join_digits (Z.to_nat copy_size) (bigint_digits value_p) in
      let size := size - copy_size in
      if size =? 0 then (digits, sign)
      else
        let (digits, size) :=
          if ECMA_BIGINT_SIZE_IS_ODD bigint_size then (digits ++ [hd 0 source], size - 1) else (digits, size) in
        (digits ++ repeat 0 (Z.to_nat size), sign)
  end.

(** The number a sequence of 64-bit digits denotes *)
Fixpoint digits64_value (ds : list Z) : Z :=
  match ds with [] => 0 | d :: ds' => d + B64 * digits64_value ds' end.

Lemma split_digits_value ds : Forall is_u64 ds ->
  digits_value (flat_map split_digit ds) = digits64_value ds /\ digits_ok (flat_map split_digit ds)
  /\ zlength (flat_map split_digit ds) = 2 * zlength ds.
Proof.
  induction 1 as [|d ds Hd Hds (IH1 & IH2 & IH3)]; [splits; [reflexivity | constructor | reflexivity] |].
  cbn [flat_map split_digit app digits_value digits64_value]. rewrite Z.shiftr_div_pow2 by lia. change (2 ^ 32) with B32.
  unfold is_u64 in Hd. assert (E1 : u32 (d / B32) = d / B32) by (apply u32_small; zmod). rewrite E1, IH1, !zlength_cons, IH3.
  splits; [unfold u32; pose proof (Z.div_mod d B32 ltac:(lia)); lia | | lia].
  apply Forall_cons; [apply u32_range |]. apply Forall_cons; [zmod | assumption].
Qed.

Lemma digits64_snoc ds d : digits64_value (ds ++ [d]) = digits64_value ds + B64 ^ zlength ds * d.
Proof.
  induction ds as [|x ds IH]; [cbn [app digits64_value]; rewrite (@zlength_nil Z); lia |].
  cbn [app digits64_value]. rewrite IH, zlength_cons, Z.pow_add_r by (pose proof (zlength_nonneg ds); lia). change (B64 ^ 1) with B64. ring.
Qed.

(** Stripping the leading zeros *)
Lemma skip_zero_64 rds : exists zs, rds = zs ++ skip_zero_digits rds /\ digits64_value (rev rds) = digits64_value (rev (skip_zero_digits rds)).
Proof.
  induction rds as [|d rds (zs & E & V)]; [now exists [] |]. cbn [skip_zero_digits]. destruct (Z.eqb_spec d 0) as [->|].
  - exists (0 :: zs). cbn [app rev]. rewrite <- E, digits64_snoc, V. split; [reflexivity | lia].
  - now exists [].
Qed.

(** The digits that are kept of the written ones *)
Lemma written_digits ds : Forall is_u64 ds -> last ds 0 <> 0 ->
  let written := flat_map split_digit ds in
  let n := if Z.shiftr (last ds 0) 32 =? 0 then 2 * zlength ds - 1 else 2 * zlength ds in
  let kept := firstn (Z.to_nat n) written in
  digits_ok kept /\ last kept 0 <> 0 /\ digits_value kept = digits64_value ds /\ zlength kept = n.
Proof.
  intros Hok Hl written n kept. destruct (split_digits_value ds Hok) as (V & Hw & L). fold written in V, Hw, L.
  assert (Hne : ds <> []) by (intros ->; now apply Hl). destruct (exists_last Hne) as (l & t & ->). unfold kept, n. clear kept n. rewrite last_last in *.
  apply Forall_app in Hok as [Hol Hot]. apply Forall_inv in Hot. unfold is_u64 in Hot.
  assert (Ew : written = (flat_map split_digit l ++ [u32 t]) ++ [u32 (Z.shiftr t 32)]).
  { unfold written. rewrite flat_map_app. cbn [flat_map split_digit app]. now rewrite <- app_assoc. }
  assert (Hhi : u32 (Z.shiftr t 32) = Z.shiftr t 32).
  { rewrite Z.shiftr_div_pow2 by lia. apply u32_small. change (2 ^ 32) with B32. zmod. }
  rewrite Hhi in Ew. destruct (Z.eqb_spec (Z.shiftr t 32) 0) as [E0|E0].
  - rewrite E0 in Ew. assert (Ek : firstn (Z.to_nat (2 * zlength (l ++ [t]) - 1)) written = flat_map split_digit l ++ [u32 t]).
    { rewrite Ew in *. rewrite zlength_snoc in L. replace (2 * zlength (l ++ [t]) - 1) with (zlength (flat_map split_digit l ++ [u32 t])) by lia.
      apply first_app. }
    rewrite Ek. rewrite Ew in V, Hw, L. rewrite digits_value_snoc, Z.mul_0_r, Z.add_0_r in V. apply Forall_app in Hw as [Hw _].
    rewrite zlength_snoc in L. splits; try assumption; [| lia]. rewrite last_last.
    rewrite Z.shiftr_div_pow2 in E0 by lia. change (2 ^ 32) with B32 in E0. unfold u32. pose proof (Z.div_mod t B32 ltac:(lia)). lia.
  - assert (Ek : firstn (Z.to_nat (2 * zlength (l ++ [t]))) written = written) by (rewrite <- L; rewrite <- (app_nil_r written) at 2; apply first_app).
    rewrite Ek. splits; try assumption. rewrite Ew, last_last. assumption.
Qed.

Lemma wp_create_from_digits {HA : HeapAlloc} digits sign : Forall is_u64 digits -> zlength digits < ECMA_BIGINT_MAX_SIZE ->
  wp (ecma_bigint_create_from_digits digits sign)
     (fun o held => match o with
                    | CREATED r => bigint_result (if sign then - digits64_value digits else digits64_value digits) r held
                    | BUFFER_OVERFLOW => False
                    end).
Proof.
  intros Hok Hlen. unfold ecma_bigint_create_from_digits. cbv zeta.
  destruct (skip_zero_64 (rev digits)) as (zs & E & V). rewrite rev_involutive in V. rewrite V.
  assert (Hs : Forall is_u64 (rev (skip_zero_digits (rev digits))) /\ zlength (rev (skip_zero_digits (rev digits))) <= zlength digits).
  { apply Forall_rev in Hok. rewrite E in Hok. apply Forall_app in Hok as [_ Hok]. split; [now apply Forall_rev |].
    apply (f_equal zlength) in E. rewrite zlength_app, zlength_rev in E. rewrite zlength_rev. pose proof (zlength_nonneg zs). lia. }
  pose proof (skip_zero_head (rev digits)) as Hh. rewrite <- (rev_involutive (skip_zero_digits (rev digits))), <- last_hd_rev in Hh.
  set (ds := rev (skip_zero_digits (rev digits))) in *. destruct Hs as [Hds Hle]. destruct ds as [|d ds'] eqn:Eds.
  { wp_step. cbn. destruct sign; now split. }
  rewrite <- Eds in *. assert (Hl : last ds 0 <> 0).
  { intros Hz. apply Hh in Hz. apply (f_equal (@rev Z)) in Hz. rewrite rev_involutive in Hz. rewrite Hz in Eds. discriminate. }
  clear Hh. destruct (written_digits ds Hds Hl) as (K1 & K2 & K3 & K4). destruct (split_digits_value ds Hds) as (_ & _ & L).
  set (n := if Z.shiftr (last ds 0) 32 =? 0 then 2 * zlength ds - 1 else 2 * zlength ds) in *.
  assert (Hn : 1 <= n <= 2 * zlength ds /\ 2 * zlength ds - 1 <= n).
  { assert (0 < zlength ds) by (apply zlength_pos; rewrite Eds; discriminate). unfold n. destruct (_ =? 0); lia. }
  rewrite (proj2 (Z.ltb_lt (zlength ds) _)) by lia. unfold ECMA_BIGINT_MAX_SIZE in Hlen.
  assert (Es : (if Z.shiftr (last ds 0) 32 =? 0 then u32 (u32 (zlength ds * 8) - 4) else u32 (zlength ds * 8)) = 4 * n).
  { rewrite (u32_small (zlength ds * 8)) by (unfold is_u32; lia). unfold n. destruct (_ =? 0); [rewrite u32_small by (unfold is_u32; lia) |]; lia. }
  rewrite Es. unfold in_digits. replace (4 * n / 4) with n by (Z.div_mod_to_equations; lia).
  rewrite get_byte_size_eq, L, (proj2 (Z.ltb_ge _ _)) by (Z.div_mod_to_equations; lia).
  pose proof (wp_create_signed (4 * n) _ sign _
    (fun r => ret (match r with
                   | None => BI_ERROR ECMA_ERR_ALLOCATE_BIGINT_VALUE
                   | Some r => BI_NEW (or_sign (set_digits r (firstn (Z.to_nat n) (flat_map split_digit ds))) (if sign then ECMA_BIGINT_SIGN else 0))
                   end)) ltac:(unfold digits_size; rewrite K4; reflexivity) K1 K2 eq_refl eq_refl (fun r => eq_refl)) as W.
  rewrite K3 in W. clear - W. intros h. specialize (W h). unfold bind in *. destruct (ecma_bigint_create (4 * n) h) as [[r|] h']; cbn [fst snd ret] in *.
  - destruct sign; [exact W | rewrite or_sign_0 in W; exact W].
  - exact W.
Qed.

(** ** Reading 64-bit digits *)

Lemma digits64_bound ds : Forall is_u64 ds -> 0 <= digits64_value ds < B64 ^ zlength ds.
Proof.
  induction 1 as [|d ds Hd Hds IH]; [cbn; lia |]. cbn [digits64_value]. unfold is_u64 in Hd.
  rewrite zlength_cons, Z.pow_add_r by (pose proof (zlength_nonneg ds); lia). change (B64 ^ 1) with B64. nia.
Qed.

Lemma digits64_app a b : digits64_value (a ++ b) = digits64_value a + B64 ^ zlength a * digits64_value b.
Proof.
  induction a as [|d a IH]; [cbn [app digits64_value]; rewrite (@zlength_nil Z); lia |].
  cbn [app digits64_value]. rewrite IH, zlength_cons, Z.pow_add_r by (pose proof (zlength_nonneg a); lia). change (B64 ^ 1) with B64. ring.
Qed.

Lemma digits64_zeros n : digits64_value (repeat 0 n) = 0 /\ Forall is_u64 (repeat 0 n).
Proof. induction n as [|n [IH1 IH2]]; [split; constructor |]. cbn. rewrite IH1. split; [lia | constructor; [unfold is_u64; lia | assumption]]. Qed.

Lemma join_digits_spec count : forall source, digits_ok source -> (2 * count <= length source)%nat ->
  let (ds, rest) := join_digits count source in
  Forall is_u64 ds /\ length ds = count /\ rest = skipn (2 * count) source
  /\ digits_value source = digits64_value ds + B64 ^ Z.of_nat count * digits_value rest.
Proof.
  induction count as [|count IH]; intros source Hok Hl.
  - cbn [join_digits digits64_value]. splits; [constructor | reflexivity | reflexivity |]. change (B64 ^ Z.of_nat 0) with 1. lia.
  - destruct source as [|low [|high source]]; [cbn in Hl; lia | cbn in Hl; lia |]. cbn [join_digits].
    apply Forall_cons_iff in Hok as [Hlo Hok]. apply Forall_cons_iff in Hok as [Hhi Hok].
    specialize (IH source Hok ltac:(cbn in Hl; lia)). destruct (join_digits count source) as [ds rest]. destruct IH as (IH1 & IH2 & IH3 & IH4).
    unfold is_u32 in *. assert (E : Z.lor low (u64 (Z.shiftl high 32)) = low + B32 * high).
    { rewrite Z.shiftl_mul_pow2 by lia. unfold u64. rewrite Z.mod_small by (change (2 ^ 32) with B32; lia).
      rewrite Z.lor_comm, lor_mul_low by lia. change (2 ^ 32) with B32. ring. }
    rewrite E. cbn [digits_value digits64_value length]. rewrite IH4. splits.
    + constructor; [unfold is_u64; lia | assumption].
    + now rewrite IH2.
    + rewrite IH3. now replace (2 * S count)%nat with (S (S (2 * count))) by lia.
    + rewrite Nat2Z.inj_succ, <- Z.add_1_l, Z.pow_add_r by lia. change (B64 ^ 1) with B64. ring.
Qed.

(** The digits of a magnitude in a buffer of [size] digits *)
Lemma get_digits_magnitude ds size : digits_ok ds -> 0 <= size ->
  let copy := if size <? zlength ds / 2 then size else zlength ds / 2 in
  let (digits, source) := join_digits (Z.to_nat copy) ds in
  let out :=
    if size - copy =? 0 then digits
    else if Z.odd (zlength ds) then (digits ++ [hd 0 source]) ++ repeat 0 (Z.to_nat (size - copy - 1))
    else digits ++ repeat 0 (Z.to_nat (size - copy)) in
  zlength out = size /\ Forall is_u64 out /\ digits64_value out = digits_value ds mod B64 ^ size.
Proof.
  intros Hok Hs copy. pose proof (zlength_nonneg ds) as Hn. pose proof (Z.div_mod (zlength ds) 2 ltac:(lia)) as Hdm.
  pose proof (Z.mod_pos_bound (zlength ds) 2 ltac:(lia)) as Hm2.
  assert (Hc : 0 <= copy <= zlength ds / 2 /\ copy <= size).
  { unfold copy. destruct (Z.ltb_spec size (zlength ds / 2)); lia. }
  pose proof (join_digits_spec (Z.to_nat copy) ds Hok ltac:(unfold zlength in *; lia)) as J.
  destruct (join_digits (Z.to_nat copy) ds) as [digits source]. destruct J as (J1 & J2 & J3 & J4).
  rewrite Z2Nat.id in J4 by lia. assert (Ld : zlength digits = copy) by (unfold zlength; lia).
  pose proof (digits64_bound digits J1) as Hb. rewrite Ld in Hb.
  assert (Ls : zlength source = zlength ds - 2 * copy) by (rewrite J3; unfold zlength in *; rewrite length_skipn; lia).
  destruct (Z.eqb_spec (size - copy) 0) as [E|E].
  - assert (copy = size) as E' by lia. rewrite E' in *. cbv zeta. splits; try assumption.
    rewrite J4, (Z.mul_comm (B64 ^ size)), Z.mod_add, Z.mod_small by lia. reflexivity.
  - assert (copy = zlength ds / 2) as Ec by (unfold copy in *; destruct (Z.ltb_spec size (zlength ds / 2)); lia).
    destruct (digits64_zeros (Z.to_nat (size - copy - 1))) as [Z1 Z2]. destruct (digits64_zeros (Z.to_nat (size - copy))) as [Z3 Z4].
    assert (Small : forall out, Forall is_u64 out -> zlength out = size -> digits64_value out = digits_value ds ->
       zlength out = size /\ Forall is_u64 out /\ digits64_value out = digits_value ds mod B64 ^ size).
    { intros out Ho Hlen Hv. splits; try assumption. rewrite Hv, Z.mod_small; [reflexivity |]. rewrite <- Hv, <- Hlen. now apply digits64_bound. }
    assert (Hodd : Z.odd (zlength ds) = (zlength ds mod 2 =? 1)) by apply odd_mod_2. rewrite Hodd. clear Hodd.
    destruct (Z.eqb_spec (zlength ds mod 2) 1) as [Eo|Eo]; apply Small.
    + apply Forall_app. split; [| assumption]. apply Forall_app. split; [assumption |]. constructor; [| constructor].
      destruct source as [|d source]; cbn; [unfold is_u64; lia |]. assert (Hok' : digits_ok (d :: source)) by (rewrite J3; unfold digits_ok; rewrite <- (firstn_skipn (2 * Z.to_nat copy) ds) in Hok; apply Forall_app in Hok; apply Hok).
      apply Forall_inv in Hok'. unfold is_u32, is_u64 in *. lia.
    + rewrite zlength_app, zlength_snoc, zlength_repeat by lia. lia.
    + rewrite digits64_app, Z1, digits64_snoc, Ld, J4. destruct source as [|d [|]]; rewrite ?zlength_cons, ?(@zlength_nil Z) in Ls; try (pose proof (zlength_nonneg source)); try lia.
      * cbn [hd digits_value]. lia.
      * pose proof (zlength_nonneg l). lia.
    + apply Forall_app. now split.
    + rewrite zlength_app, zlength_repeat by lia. lia.
    + rewrite digits64_app, Z3, J4. destruct source as [|d source]; [cbn; lia |]. rewrite zlength_cons in Ls. pose proof (zlength_nonneg source). lia.
Qed.

Lemma get_digits_spec v size : bigint_ok v -> 0 <= size ->
  let (digits, sign) := ecma_bigint_get_digits_and_sign v size in
  zlength digits = size /\ Forall is_u64 digits /\ digits64_value digits = Z.abs (bigint_to_Z v) mod B64 ^ size
  /\ sign = (bigint_to_Z v <? 0).
Proof.
  intros Hv Hs. destruct v as [|p]; cbn [ecma_bigint_get_digits_and_sign bigint_to_Z].
  - destruct (digits64_zeros (Z.to_nat size)) as [Z1 Z2]. rewrite zlength_repeat, Z1, Z.mod_0_l by (try lia; apply Z.pow_nonzero; lia). auto.
  - pose proof Hv as [W _]. rewrite (wf_size _ W). unfold digits_size.
    replace (4 * zlength (bigint_digits p) / 8) with (zlength (bigint_digits p) / 2) by (Z.div_mod_to_equations; lia).
    rewrite size_is_odd_eq. pose proof (get_digits_magnitude (bigint_digits p) size (wf_digits _ W) Hs) as G. cbv zeta in G.
    assert (Ha : Z.abs (bigint_int p) = digits_value (bigint_digits p) /\ negb (sign_of p =? 0) = (bigint_int p <? 0)).
    { pose proof (bigint_pos p Hv) as Hp. unfold bigint_int. unfold big_uint_value in *. destruct (Z.eqb_spec (sign_of p) 0); cbn [negb];
        (split; [lia |]); symmetry; [apply Z.ltb_ge | apply Z.ltb_lt]; lia. }
    destruct Ha as [-> ->]. destruct (join_digits _ (bigint_digits p)) as [digits source].
    destruct (_ =? 0); [| destruct (Z.odd _)]; destruct G as (G1 & G2 & G3); auto.
Qed.

Lemma get_size_spec v : bigint_ok v ->
  Z.abs (bigint_to_Z v) < B64 ^ ecma_bigint_get_size_in_digits v
  /\ (bigint_to_Z v <> 0 -> B64 ^ (ecma_bigint_get_size_in_digits v - 1) <= Z.abs (bigint_to_Z v)).
Proof.
  intros Hv. destruct v as [|p]; [split; [reflexivity | intros H; now contradiction H] |].
  pose proof Hv as [W _]. destruct (wf_bounds _ W) as (Hok & Hpos & Hne & Hlo & Hhi). pose proof (wf_max _ W) as Hm.
  cbn [ecma_bigint_get_size_in_digits bigint_to_Z]. rewrite (wf_size _ W). unfold digits_size, ECMA_BIGINT_MAX_SIZE in *.
  pose proof (zlength_pos _ Hne) as Hl. set (n := zlength (bigint_digits p)) in *.
  replace (Z.abs (bigint_int p)) with (big_uint_value p) by (unfold bigint_int; destruct (sign_of p =? 0); lia).
  rewrite u32_small by (unfold is_u32; lia). change B64 with (B32 ^ 2). rewrite <- !Z.pow_mul_r by (Z.div_mod_to_equations; lia). split.
  - eapply Z.lt_le_trans; [exact Hhi |]. apply Z.pow_le_mono_r; [lia |]. Z.div_mod_to_equations; lia.
  - intros _. eapply Z.le_trans; [| exact Hlo]. apply Z.pow_le_mono_r; [lia |]. Z.div_mod_to_equations; lia.
Qed.

(** ** Properties *)

(** C36: ecma_bigint_parse_string delivers the number of a literal: optional
    white space, a sign or a radix prefix, at least one digit of the radix
    (with underscores where the options allow them), optional white space.  A
    memory error means that the number is too large or that the heap refuses,
    with one exception: a literal zero with white space behind it always ends with
    a memory error. *)
Theorem ecma_bigint_parse_string_correct {HA : HeapAlloc} ws1 p cs ws2 options :
  Forall is_white ws1 -> Forall is_white ws2 -> prefix_ok p -> cs <> [] ->
  Forall (literal_char (has_option options ECMA_BIGINT_PARSE_ALLOW_UNDERSCORE) (prefix_radix p)) cs ->
  let x := literal_int options p cs in
  wp (ecma_bigint_parse_string (cesu8_encode (ws1 ++ (prefix_chars p ++ cs) ++ ws2)) options)
     (parse_result x ((x =? 0) && negb (zlength ws2 =? 0)) options).
Proof. apply wp_parse_literal. Qed.

(** Printing a BigInt in decimal and parsing the text gives the BigInt
    back, for both variants of the division that prints, and nothing but the
    new BigInt stays allocated. *)
Theorem bigint_text_roundtrip {HA : HeapAlloc} wide v : bigint_ok v -> wp (print_and_parse wide v) (reparsed v).
Proof. apply wp_print_and_parse. Qed.

(** The embedder's 64-bit digits: ecma_bigint_create_from_digits delivers the
    number of fewer than 65536 digits, ecma_bigint_get_digits_and_sign writes
    exactly [size] digits, the magnitude modulo 2^(64 size) and the sign, and
    ecma_bigint_get_size_in_digits is the least size that loses nothing. *)
Theorem ecma_bigint_digits64_correct {HA : HeapAlloc} digits sign v size :
  Forall is_u64 digits -> zlength digits < ECMA_BIGINT_MAX_SIZE -> bigint_ok v -> 0 <= size ->
  wp (ecma_bigint_create_from_digits digits sign)
     (fun o held => match o with
                    | CREATED r => bigint_result (if sign then - digits64_value digits else digits64_value digits) r held
                    | BUFFER_OVERFLOW => False
                    end)
  /\ (let (out, out_sign) := ecma_bigint_get_digits_and_sign v size in
      zlength out = size /\ Forall is_u64 out /\ digits64_value out = Z.abs (bigint_to_Z v) mod B64 ^ size
      /\ out_sign = (bigint_to_Z v <? 0))
  /\ Z.abs (bigint_to_Z v) < B64 ^ ecma_bigint_get_size_in_digits v
  /\ (bigint_to_Z v <> 0 -> B64 ^ (ecma_bigint_get_size_in_digits v - 1) <= Z.abs (bigint_to_Z v)).
Proof.
  intros Hd Hl Hv Hs. split; [now apply wp_create_from_digits |]. split; [now apply get_digits_spec | now apply get_size_spec].
Qed.

(** With 65536 digits the size is compared before it is scaled to bytes: the
    block is created for 65536 bytes and 524288 bytes are written into it. *)
Lemma ecma_bigint_create_from_digits_overflow digits sign : Forall is_u64 digits -> zlength digits = 65536 -> B32 <= last digits 0 ->
  fst (@ecma_bigint_create_from_digits (CounterHeap true) digits sign (empty_heap 0)) = BUFFER_OVERFLOW.
Proof.
  intros Hok Hlen Hl. unfold ecma_bigint_create_from_digits. cbv zeta.
  assert (E : rev (skip_zero_digits (rev digits)) = digits).
  { rewrite <- (rev_involutive digits) at 2. f_equal. rewrite last_hd_rev in Hl. destruct (rev digits) as [|d l]; [reflexivity |].
    cbn in *. now rewrite (proj2 (Z.eqb_neq d 0)) by lia. }
  rewrite E. destruct (split_digits_value digits Hok) as (_ & _ & L). rewrite L, Hlen.
  assert (Hhi : (Z.shiftr (last digits 0) 32 =? 0) = false).
  { apply Z.eqb_neq. rewrite Z.shiftr_div_pow2 by lia. change (2 ^ 32) with B32. assert (1 <= last digits 0 / B32) by (apply Z.div_le_lower_bound; lia). lia. }
  rewrite Hhi. destruct digits; [discriminate | reflexivity].
Qed.

Lemma ecma_bigint_parse_string_witness :
  @wp (CounterHeap true) _ (@ecma_bigint_parse_string (CounterHeap true) [32; 48; 120; 70; 102; 95; 49; 226; 128; 168] 8)
    (@parse_result (CounterHeap true) 4081 false 8).
Proof.
  apply (@ecma_bigint_parse_string_correct (CounterHeap true) [32] (PREFIX_RADIX 120) [70; 102; 95; 49] [8232] 8).
  - constructor; [split; [split; reflexivity || discriminate | reflexivity] | constructor].
  - constructor; [split; [split; reflexivity || discriminate | reflexivity] | constructor].
  - split; [lia | vm_compute; discriminate].
  - discriminate.
  - repeat (constructor; [first [left; split; reflexivity | right; vm_compute; split; congruence] |]). constructor.
Defined.

(** The exception: the text "0" followed by a space is refused with a memory error. *)
Lemma ecma_bigint_parse_string_spurious_error :
  fst (@ecma_bigint_parse_string (CounterHeap true) [48; 32] ECMA_BIGINT_PARSE_NO_OPTIONS (empty_heap 0))
  = PARSE_RESULT (BI_ERROR ECMA_ERR_ALLOCATE_BIGINT_VALUE).
Proof. vm_compute. reflexivity. Qed.

Lemma bigint_text_roundtrip_witness :
  @wp (CounterHeap true) _ (@print_and_parse (CounterHeap true) true (bigint_of true [5; 6; 7])) (@reparsed (CounterHeap true) (bigint_of true [5; 6; 7])).
Proof. apply (@bigint_text_roundtrip (CounterHeap true) true). bigint_wf_of. Defined.

Lemma ecma_bigint_digits64_witness :
  ecma_bigint_get_size_in_digits (bigint_of true [5; 6; 7]) = 2
  /\ ecma_bigint_get_digits_and_sign (bigint_of true [5; 6; 7]) 3 = ([5 + 6 * B32; 7; 0], true)
  /\ digits64_value [5 + 6 * B32; 7; 0] = Z.abs (bigint_to_Z (bigint_of true [5; 6; 7])) mod B64 ^ 3.
Proof.
  split; [reflexivity |]. split; [reflexivity |].
  apply (proj1 (proj2 (proj2 (proj1 (proj2 (@ecma_bigint_digits64_correct (CounterHeap true) [1] false (bigint_of true [5; 6; 7]) 3
    ltac:(repeat (constructor; [split; reflexivity || discriminate |]); constructor) ltac:(reflexivity) ltac:(bigint_wf_of) ltac:(discriminate))))))).
Defined.
