(* ===== verification/MergeSort.v ===== *)
(** * Sorting: src/jjs-core/ecma/builtin-objects/ecma-builtin-helpers-sort.c

    The bottom-up merge sort behind Array.prototype.sort, its copying variant
    and the typed array ones.  The comparison is a callback that may run user
    code: here an argument that reads and changes an arbitrary state.  The
    array and its copy are two buffers, and the pointers array_p and
    dest_array_p say which buffer they point to. *)
From Stdlib Require Import ZArith List Lia Bool Permutation Sorted.
From S2P Require Import Prelude BigIntNumber.
Import ListNotations.
#[local] Open Scope Z_scope.

(** An ecma_value_t *)
Definition ecma_value_t : Type := Z.

(** What the callback returns: ECMA_VALUE_ERROR or a number, by its bits *)
Inductive compare_value :=
| COMPARE_ERROR
| COMPARE_NUMBER (number : Z).

(** number <= ECMA_NUMBER_ZERO *)
Definition number_le_zero (number : Z) : bool :=
  negb (ecma_number_is_nan number) && (ecma_number_is_zero number || ecma_number_sign number).

(** array_p[index]; [None] outside the array *)
Definition array_get (array : list ecma_value_t) (index : Z) : option ecma_value_t :=
  if index <? 0 then None else nth_error array (Z.to_nat index).

(** array_p[index] = value *)
Definition array_set (array : list ecma_value_t) (index : Z) (value : ecma_value_t) : option (list ecma_value_t) :=
  if (0 <=? index) && (index <? zlength array)
  then Some (firstn (Z.to_nat index) array ++ value :: skipn (S (Z.to_nat index)) array)
  else None.

(** The buffers a pointer may point to *)
Inductive buffer := BASE_ARRAY | DEST_ARRAY.

Definition buffer_eqb (a b : buffer) : bool :=
  match a, b with BASE_ARRAY, BASE_ARRAY | DEST_ARRAY, DEST_ARRAY => true | _, _ => false end.

Record sort_memory := {
  base_buffer : list ecma_value_t;
  dest_buffer : list ecma_value_t
}.

Definition load (m : sort_memory) (p : buffer) : list ecma_value_t :=
  match p with BASE_ARRAY => base_buffer m | DEST_ARRAY => dest_buffer m end.

Definition store (m : sort_memory) (p : buffer) (a : list ecma_value_t) : sort_memory :=
  match p with
  | BASE_ARRAY => {| base_buffer := a; dest_buffer := dest_buffer m |}
  | DEST_ARRAY => {| base_buffer := base_buffer m; dest_buffer := a |}
  end.

Section Sort.
Context {State : Type}.
Variable sort_cb : ecma_value_t -> ecma_value_t -> State -> compare_value * State.

(** The loop of ecma_builtin_helper_array_merge_sort_bottom_up for the next
    [n] values of k; the boolean tells whether it returns ECMA_VALUE_ERROR *)
Fixpoint bottom_up_loop (n : nat) (source : list ecma_value_t) (right_idx end_idx k i j : Z)
    (output : list ecma_value_t) (s : State) : option (bool * list ecma_value_t * State) :=
  match n with
  | O => Some (false, output, s)
  | S n =>
      let compared :=
        if (i <? right_idx) && (j <? end_idx) then
          match array_get source i, array_get source j with
          | Some lhs, Some rhs => Some (sort_cb lhs rhs s)
          | _, _ => None
          end
        else Some (COMPARE_NUMBER 0, s) in
      match compared with
      | None => None
      | Some (COMPARE_ERROR, s) => Some (true, output, s)
      | Some (COMPARE_NUMBER number, s) =>
          if (i <? right_idx) && number_le_zero number then
            match array_get source i with
            | Some v =>
                match array_set output k v with
                | Some output => bottom_up_loop n source right_idx end_idx (k + 1) (i + 1) j output s
                | None => None
                end
            | None => None
            end
          else
            match array_get source j with
            | Some v =>
                match array_set output k v with
                | Some output => bottom_up_loop n source right_idx end_idx (k + 1) i (j + 1) output s
                | None => None
                end
            | None => None
            end
      end
  end.

Definition ecma_builtin_helper_array_merge_sort_bottom_up (source : list ecma_value_t) (left_idx right_idx end_idx : Z)
    (output : list ecma_value_t) (s : State) : option (bool * list ecma_value_t * State) :=
  bottom_up_loop (Z.to_nat (end_idx - left_idx)) source right_idx end_idx left_idx left_idx right_idx output s.

(** The inner loop: merges all pairs of runs of width w *)
Fixpoint merge_runs_loop (fuel : nat) (length w i : Z) (array_p dest_array_p : buffer) (m : sort_memory) (s : State)
    : option (bool * sort_memory * State) :=
  match fuel with
  | O => None
  | S fuel =>
      if i <? length then
        let r := if length <? u32 (i + w) then length else u32 (i + w) in
        let e := if length <? u32 (i + 2 * w) then length else u32 (i + 2 * w) in
        match ecma_builtin_helper_array_merge_sort_bottom_up (load m array_p) i r e (load m dest_array_p) s with
        | None => None
        | Some (ret_value, output, s) =>
            let m := store m dest_array_p output in
            if ret_value then Some (true, m, s)
            else merge_runs_loop fuel length w (u32 (i + 2 * w)) array_p dest_array_p m s
        end
      else Some (false, m, s)
  end.

(** The outer loop: doubles the width and swaps the arrays; [inner] bounds the
    iterations of the inner loop *)
Fixpoint merge_passes_loop (fuel inner : nat) (length w : Z) (array_p dest_array_p : buffer) (m : sort_memory) (s : State)
    : option (bool * buffer * buffer * sort_memory * State) :=
  match fuel with
  | O => None
  | S fuel =>
      if w <? length then
        match merge_runs_loop inner length w 0 array_p dest_array_p m s with
        | None => None
        | Some (true, m, s) => Some (true, array_p, dest_array_p, m, s)
        | Some (false, m, s) => merge_passes_loop fuel inner length (u32 (2 * w)) dest_array_p array_p m s
        end
      else Some (false, array_p, dest_array_p, m, s)
  end.

(** The final loop: array_p[index] = dest_array_p[index] *)
Fixpoint copy_back_loop (n : nat) (index : Z) (source array : list ecma_value_t) : option (list ecma_value_t) :=
  match n with
  | O => Some array
  | S n =>
      match array_get source index with
      | Some v =>
          match array_set array index v with
          | Some array => copy_back_loop n (index + 1) source array
          | None => None
          end
      | None => None
      end
  end.

Record sort_outcome := {
  sort_error : bool; (** ret_value is ECMA_VALUE_ERROR *)
  sorted_array : list ecma_value_t; (** the caller's array *)
  finalized : buffer; (** the buffer given back to the heap *)
  sort_state : State
}.

(** Enough for every length the heap can hold *)
Definition pass_fuel : nat := 33.

(** [dest] is the fresh memory of JMEM_DEFINE_LOCAL_ARRAY *)
Definition ecma_builtin_helper_array_merge_sort_helper (array dest : list ecma_value_t) (s : State) : option sort_outcome :=
  let length := zlength array in
  match merge_passes_loop pass_fuel (S (Z.to_nat length)) length 1 BASE_ARRAY DEST_ARRAY
          {| base_buffer := array; dest_buffer := dest |} s with
  | None => None
  | Some (ret_value, array_p, dest_array_p, m, s) =>
      if buffer_eqb dest_array_p BASE_ARRAY then
        match copy_back_loop (Z.to_nat length) 0 (load m array_p) (load m dest_array_p) with
        | Some copied =>
            let m := store m dest_array_p copied in
            Some {| sort_error := ret_value; sorted_array := load m BASE_ARRAY; finalized := array_p; sort_state := s |}
        | None => None
        end
      else Some {| sort_error := ret_value; sorted_array := load m BASE_ARRAY; finalized := dest_array_p; sort_state := s |}
  end.
End Sort.
Arguments sort_error {State} _.
Arguments sorted_array {State} _.
Arguments finalized {State} _.
Arguments sort_state {State} _.

(** ** Reading and writing segments *)

Definition take (k : Z) (l : list ecma_value_t) : list ecma_value_t := firstn (Z.to_nat k) l.
Definition drop (k : Z) (l : list ecma_value_t) : list ecma_value_t := skipn (Z.to_nat k) l.
Definition slice (l : list ecma_value_t) (a b : Z) : list ecma_value_t := take (b - a) (drop a l).

Lemma zlength_take k l : 0 <= k <= zlength l -> zlength (take k l) = k.
Proof. unfold zlength, take. intros. rewrite length_firstn. lia. Qed.

Lemma zlength_drop k l : 0 <= k <= zlength l -> zlength (drop k l) = zlength l - k.
Proof. unfold zlength, drop. intros. rewrite length_skipn. lia. Qed.

Lemma take_all k l : zlength l <= k -> take k l = l.
Proof. unfold zlength, take. intros. apply firstn_all2. lia. Qed.

Lemma drop_all k l : zlength l <= k -> drop k l = [].
Proof. unfold zlength, drop. intros. apply skipn_all2. lia. Qed.

Lemma drop_drop a b l : 0 <= a -> 0 <= b -> drop a (drop b l) = drop (a + b) l.
Proof. intros. unfold drop. rewrite skipn_skipn. f_equal. lia. Qed.

Lemma take_app_exact k l1 l2 : zlength l1 = k -> take k (l1 ++ l2) = l1.
Proof. unfold zlength, take. intros <-. rewrite Nat2Z.id, firstn_app, Nat.sub_diag, firstn_all. cbn. apply app_nil_r. Qed.

Lemma drop_app_exact k l1 l2 : zlength l1 = k -> drop k (l1 ++ l2) = l2.
Proof. unfold zlength, drop. intros <-. rewrite Nat2Z.id, skipn_app, Nat.sub_diag, skipn_all. reflexivity. Qed.

Lemma drop_app_beyond k l1 l2 : zlength l1 <= k -> drop k (l1 ++ l2) = drop (k - zlength l1) l2.
Proof.
  intros H. unfold drop. rewrite skipn_app, skipn_all2 by (unfold zlength in *; lia). cbn. f_equal. unfold zlength. lia.
Qed.

Lemma take_drop k l : take k l ++ drop k l = l.
Proof. apply firstn_skipn. Qed.

Lemma slice_nil l a b : b <= a -> slice l a b = [].
Proof. intros. unfold slice, take. now replace (Z.to_nat (b - a)) with O by lia. Qed.

Lemma slice_cons l a b : 0 <= a < b -> b <= zlength l ->
  exists v, array_get l a = Some v /\ slice l a b = v :: slice l (a + 1) b.
Proof.
  intros Ha Hb. unfold array_get. rewrite (proj2 (Z.ltb_ge a 0)) by lia.
  destruct (nth_error l (Z.to_nat a)) as [v|] eqn:E; [| apply nth_error_None in E; unfold zlength in Hb; lia].
  exists v. split; [reflexivity |]. unfold slice, take, drop. replace (Z.to_nat (b - a)) with (S (Z.to_nat (b - (a + 1)))) by lia.
  replace (Z.to_nat (a + 1)) with (S (Z.to_nat a)) by lia.
  assert (H : skipn (Z.to_nat a) l = v :: skipn (S (Z.to_nat a)) l).
  { clear - E. revert l E. induction (Z.to_nat a) as [|n IH]; intros [|x l] E; try discriminate; [now injection E as -> | apply IH, E]. }
  now rewrite H.
Qed.

Lemma slice_split l a b c : 0 <= a <= b -> b <= c -> slice l a b ++ slice l b c = slice l a c.
Proof.
  intros. unfold slice. replace (c - a) with ((b - a) + (c - b)) by lia.
  replace (drop b l) with (drop (b - a) (drop a l)) by (rewrite drop_drop by lia; f_equal; lia).
  set (l' := drop a l). unfold take, drop. rewrite Z2Nat.inj_add by lia.
  rewrite <- (firstn_skipn (Z.to_nat (b - a)) l') at 3. rewrite firstn_app, firstn_firstn.
  rewrite length_firstn. rewrite Nat.min_r by lia. f_equal.
  destruct (Nat.le_ge_cases (Z.to_nat (b - a)) (length l')).
  - f_equal; lia.
  - rewrite skipn_all2 by lia. now rewrite !firstn_nil.
Qed.

(** What a write changes *)
Lemma array_set_spec a k v : 0 <= k < zlength a -> exists a', array_set a k v = Some a'
  /\ zlength a' = zlength a /\ take (k + 1) a' = take k a ++ [v] /\ (forall e, k < e -> drop e a' = drop e a).
Proof.
  intros Hk. unfold array_set. rewrite (proj2 (Z.leb_le 0 k)), (proj2 (Z.ltb_lt k _)) by lia. cbn [andb].
  assert (Hl : zlength (take k a) = k) by (apply zlength_take; lia).
  eexists. split; [reflexivity |]. fold (take k a). replace (S (Z.to_nat k)) with (Z.to_nat (k + 1)) by lia. fold (drop (k + 1) a).
  splits.
  - rewrite zlength_app, zlength_cons, Hl, zlength_drop by lia. lia.
  - replace (take k a ++ v :: drop (k + 1) a) with ((take k a ++ [v]) ++ drop (k + 1) a) by (now rewrite <- app_assoc).
    apply take_app_exact. rewrite zlength_app, Hl. reflexivity.
  - intros e He. replace (take k a ++ v :: drop (k + 1) a) with ((take k a ++ [v]) ++ drop (k + 1) a) by (now rewrite <- app_assoc).
    rewrite drop_app_beyond by (rewrite zlength_app, Hl; cbn; lia). rewrite zlength_app, Hl. change (zlength [v]) with 1. rewrite drop_drop by lia.
    f_equal. lia.
Qed.

(** ** The reference: stable insertion sort *)

Section Reference.
Variable le : ecma_value_t -> ecma_value_t -> bool.

Fixpoint insert (x : ecma_value_t) (l : list ecma_value_t) : list ecma_value_t :=
  match l with
  | [] => [x]
  | y :: l' => if le x y then x :: l else y :: insert x l'
  end.

Fixpoint stable_sort (l : list ecma_value_t) : list ecma_value_t :=
  match l with [] => [] | x :: l => insert x (stable_sort l) end.

Fixpoint merge (l1 : list ecma_value_t) : list ecma_value_t -> list ecma_value_t :=
  fix merge_l1 l2 :=
    match l1, l2 with
    | [], _ => l2
    | _, [] => l1
    | a :: l1', b :: l2' => if le a b then a :: merge l1' l2 else b :: merge_l1 l2'
    end.

Lemma merge_nil_r l : merge l [] = l.
Proof. now destruct l. Qed.

Lemma merge_nil_l l : merge [] l = l.
Proof. now destruct l. Qed.

Lemma merge_cons a l1 b l2 : merge (a :: l1) (b :: l2) = if le a b then a :: merge l1 (b :: l2) else b :: merge (a :: l1) l2.
Proof. reflexivity. Qed.

Lemma insert_permutation x l : Permutation (x :: l) (insert x l).
Proof.
  induction l as [|y l IH]; cbn; [reflexivity |]. destruct (le x y); [reflexivity |]. rewrite perm_swap. now constructor.
Qed.

Lemma stable_sort_permutation l : Permutation l (stable_sort l).
Proof. induction l as [|x l IH]; cbn; [reflexivity |]. rewrite <- insert_permutation. now constructor. Qed.

Hypothesis le_trans : forall a b c, le a b = true -> le b c = true -> le a c = true.
Hypothesis le_total : forall a b, le a b = true \/ le b a = true.

Notation sorted := (StronglySorted (fun a b => le a b = true)).

Lemma insert_sorted x l : sorted l -> sorted (insert x l).
Proof.
  induction 1 as [|y l Hl IH Hy]; cbn; [repeat constructor |]. destruct (le x y) eqn:E.
  - constructor; [now constructor |]. constructor; [assumption |]. eapply Forall_impl; [| exact Hy]. intros z. now apply le_trans.
  - constructor; [assumption |]. rewrite <- insert_permutation. constructor; [| assumption].
    destruct (le_total x y) as [H|H]; [congruence | assumption].
Qed.

Lemma stable_sort_sorted l : sorted (stable_sort l).
Proof. induction l as [|x l IH]; cbn; [constructor | now apply insert_sorted]. Qed.

(** Elements that compare equal to [x] *)
Definition equal_to (x y : ecma_value_t) : bool := le x y && le y x.

Lemma insert_stable x y l : filter (equal_to y) (insert x l) = filter (equal_to y) (x :: l).
Proof.
  induction l as [|z l IH]; [reflexivity |]. cbn [insert]. destruct (le x z) eqn:E; [reflexivity |].
  cbn [filter] in *. rewrite IH. destruct (equal_to y x) eqn:Ex, (equal_to y z) eqn:Ez; try reflexivity.
  unfold equal_to in *. apply andb_prop in Ex, Ez. destruct Ex as [_ Ex], Ez as [Ez _]. rewrite (le_trans _ _ _ Ex Ez) in E. discriminate.
Qed.

Lemma stable_sort_stable y l : filter (equal_to y) (stable_sort l) = filter (equal_to y) l.
Proof. induction l as [|x l IH]; [reflexivity |]. cbn [stable_sort]. rewrite insert_stable. cbn [filter]. now rewrite IH. Qed.

Lemma merge_insert x l1 : sorted l1 -> forall l2, sorted l2 -> merge (insert x l1) l2 = insert x (merge l1 l2).
Proof.
  induction 1 as [|a l1 Hl1 IH Ha]; intros l2 Hl2.
  - cbn [insert]. induction Hl2 as [|b l2 Hl2 IH2 Hb]; [reflexivity |]. rewrite merge_cons, !merge_nil_l in *. cbn [insert].
    destruct (le x b); [reflexivity |]. now f_equal.
  - induction Hl2 as [|b l2 Hl2 IH2 Hb].
    + rewrite !merge_nil_r. reflexivity.
    + cbn [insert]. destruct (le x a) eqn:Exa.
      * rewrite (merge_cons x), (merge_cons a). destruct (le a b) eqn:Eab.
        -- rewrite (le_trans _ _ _ Exa Eab). cbn [insert]. now rewrite Exa.
        -- cbn [insert]. destruct (le x b) eqn:Exb; [reflexivity |]. f_equal.
           rewrite <- IH2. cbn [insert]. now rewrite Exa.
      * rewrite !merge_cons. destruct (le a b) eqn:Eab.
        -- cbn [insert]. rewrite Exa. f_equal. apply IH. now constructor.
        -- cbn [insert]. destruct (le x b) eqn:Exb.
           ++ exfalso. destruct (le_total a b) as [H|H]; [congruence |]. rewrite (le_trans _ _ _ Exb H) in Exa. discriminate.
           ++ f_equal. rewrite <- IH2. cbn [insert]. now rewrite Exa.
Qed.

Lemma merge_stable_sort l1 l2 : merge (stable_sort l1) (stable_sort l2) = stable_sort (l1 ++ l2).
Proof.
  induction l1 as [|x l1 IH]; [apply merge_nil_l |]. cbn [stable_sort app].
  rewrite merge_insert by apply stable_sort_sorted. now rewrite IH.
Qed.
End Reference.

(** ** The merge sort on the buffers *)

Section Correct.
Context {State : Type}.
Variable sort_cb : ecma_value_t -> ecma_value_t -> State -> compare_value * State.

(** Some comparison throws *)
Definition may_fail : Prop := exists a b s, fst (sort_cb a b s) = COMPARE_ERROR.

(** In every state the callback answers as the order [le] does *)
Definition consistent (le : ecma_value_t -> ecma_value_t -> bool) : Prop :=
  forall a b s, exists number, fst (sort_cb a b s) = COMPARE_NUMBER number /\ number_le_zero number = le a b.

Lemma consistent_never_fails le err : (err = true -> may_fail) -> consistent le -> err = false.
Proof.
  intros Hf H. destruct err; [| reflexivity]. destruct (Hf eq_refl) as (a & b & s & E).
  destruct (H a b s) as (number & E' & _). rewrite E in E'. discriminate.
Qed.

Variable le : ecma_value_t -> ecma_value_t -> bool.
(** Any measure that one comparison raises by at most one *)
Variable count : State -> Z.
Hypothesis count_cb : forall a b s, count s <= count (snd (sort_cb a b s)) <= count s + 1.

(** The segment of [output] from k to e is a permutation of [values], and is
    [expected] when the callback is consistent *)
Definition wrote (k e : Z) (values expected output output' : list ecma_value_t) : Prop :=
  exists merged, output' = take k output ++ merged ++ drop e output
    /\ Permutation values merged /\ (consistent le -> merged = expected).

Lemma wrote_step k e v values values' expected output output1 output' :
  0 <= k < e -> zlength output1 = zlength output -> take (k + 1) output1 = take k output ++ [v] -> drop e output1 = drop e output ->
  Permutation values (v :: values') -> wrote (k + 1) e values' expected output1 output' ->
  wrote k e values (v :: expected) output output'.
Proof.
  intros Hk Hl Ht Hd Hp (merged & -> & Hm & Hc). exists (v :: merged). splits.
  - rewrite Ht, Hd, <- !app_assoc. reflexivity.
  - rewrite Hp. now constructor.
  - intros H. f_equal. now apply Hc.
Qed.

(** The outcome of the loop on [n] more values *)
Definition loop_outcome (n : Z) (post : list ecma_value_t -> Prop) (output : list ecma_value_t) (s : State)
    (res : option (bool * list ecma_value_t * State)) : Prop :=
  exists err output' s', res = Some (err, output', s') /\ zlength output' = zlength output
    /\ count s <= count s' <= count s + n /\ (err = true -> may_fail) /\ (err = false -> post output').

(** One value written, then the rest of the loop *)
Lemma write_head n k e v values values' expected expected' output s s1 rest :
  0 <= k < e -> e <= zlength output -> count s <= count s1 <= count s + 1 -> Permutation values (v :: values') ->
  (consistent le -> expected = v :: expected') ->
  (forall o1, zlength o1 = zlength output -> loop_outcome (Z.of_nat n) (wrote (k + 1) e values' expected' o1) o1 s1 (rest o1)) ->
  loop_outcome (Z.of_nat (S n)) (wrote k e values expected output) output s
    (match array_set output k v with Some output => rest output | None => None end).
Proof.
  intros Hk He Hc Hp Hx Hrest. destruct (array_set_spec output k v ltac:(lia)) as (o1 & -> & Hl1 & Ht & Hd).
  destruct (Hrest o1 Hl1) as (err & o & s2 & -> & Hlo & Hc2 & Hf & Ho). exists err, o, s2.
  splits; try assumption; try reflexivity; try lia. intros E.
  assert (Hw : wrote k e values (v :: expected') output o) by (eapply wrote_step; eauto; apply Hd; lia).
  destruct Hw as (m & Em & Hpm & Hcm). exists m. splits; [exact Em | exact Hpm |]. intros H. now rewrite (Hcm H), (Hx H).
Qed.

(** The loop takes the head [x] of the left or of the right run *)
Ltac take_left x IH :=
  lazymatch goal with
  | E : slice ?source ?i ?r = x :: _ |- context [merge le (slice ?source ?i ?r) (slice ?source ?j ?e)] =>
      eapply write_head with (v := x) (values' := slice source (i + 1) r ++ slice source j e)
        (expected' := merge le (slice source (i + 1) r) (slice source j e));
      [lia | lia | | now rewrite E | | intros o1 Hl1; apply IH; lia]; [lia |]
  end.
Ltac take_right x IH :=
  lazymatch goal with
  | E : slice ?source ?j ?e = x :: _ |- context [merge le (slice ?source ?i ?r) (slice ?source ?j ?e)] =>
      eapply write_head with (v := x) (values' := slice source i r ++ slice source (j + 1) e)
        (expected' := merge le (slice source i r) (slice source (j + 1) e));
      [lia | lia | | rewrite E; symmetry; apply Permutation_middle | | intros o1 Hl1; apply IH; lia]; [lia |]
  end.

Lemma bottom_up_loop_spec source r e n : forall k i j output s,
  0 <= i <= r -> r <= j <= e -> r <= e <= zlength source -> zlength output = zlength source -> k = i + j - r -> Z.of_nat n = e - k ->
  loop_outcome (Z.of_nat n)
    (wrote k e (slice source i r ++ slice source j e) (merge le (slice source i r) (slice source j e)) output) output s
    (bottom_up_loop sort_cb n source r e k i j output s).
Proof.
  induction n as [|n IH]; intros k i j output s Hi Hj He Hl Hk Hn.
  { cbn [bottom_up_loop]. exists false, output, s. splits; try reflexivity; try lia. intros _. exists [].
    rewrite !slice_nil by lia. splits; [| reflexivity | reflexivity]. cbn [app]. replace e with k by lia. symmetry. apply take_drop. }
  cbn [bottom_up_loop].
  destruct (Z.ltb_spec i r) as [Hir|Hir].
  - destruct (slice_cons source i r ltac:(lia) ltac:(lia)) as (a & Ga & Ea). rewrite Ga. destruct (Z.ltb_spec j e) as [Hje|Hje].
    + destruct (slice_cons source j e ltac:(lia) ltac:(lia)) as (b & Gb & Eb). rewrite Gb. cbn [andb].
      pose proof (count_cb a b s) as Hc. destruct (sort_cb a b s) as [[|number] s1] eqn:Ecb; cbn [snd] in Hc.
      * exists true, output, s1. splits; try reflexivity; try lia. intros _. exists a, b, s. now rewrite Ecb.
      * assert (Hm : consistent le -> number_le_zero number = le a b).
        { intros H. destruct (H a b s) as (number' & E & <-). rewrite Ecb in E. now injection E as ->. }
        destruct (number_le_zero number) eqn:Ele.
        -- take_left a IH. intros H. rewrite Ea, Eb, merge_cons, <- (Hm H). reflexivity.
        -- take_right b IH. intros H. rewrite Ea, Eb, merge_cons, <- (Hm H). reflexivity.
    + cbn [andb]. change (number_le_zero 0) with true. cbn [andb]. take_left a IH.
      intros _. rewrite Ea, (slice_nil source j e) by lia. now rewrite !merge_nil_r.
  - cbn [andb]. destruct (slice_cons source j e ltac:(lia) ltac:(lia)) as (b & Gb & Eb). rewrite Gb.
    take_right b IH. intros _. rewrite Eb, (slice_nil source i r) by lia. now rewrite !merge_nil_l.
Qed.
(** ** One pass *)

(** [pass_of w l l']: [l'] is [l] with its runs of width [w] merged in pairs *)
Inductive pass_of (w : Z) : list ecma_value_t -> list ecma_value_t -> Prop :=
| pass_nil : pass_of w [] []
| pass_pair l l' : l <> [] -> pass_of w (drop (2 * w) l) l' ->
    pass_of w l (merge le (take w l) (take w (drop w l)) ++ l').

(** The rest of a pass wrote behind index [i] *)
Definition pass_wrote (w i : Z) (source output output' : list ecma_value_t) : Prop :=
  exists merged, output' = take i output ++ merged /\ Permutation (drop i source) merged
    /\ (consistent le -> pass_of w (drop i source) merged).

Lemma slice_clip (l : list ecma_value_t) a b n : 0 <= a -> n = zlength l -> slice l a b = slice l a (Z.min b n).
Proof.
  intros Ha ->. destruct (Z.le_ge_cases b (zlength l)); [now rewrite Z.min_l by lia |]. rewrite Z.min_r by lia.
  unfold slice. destruct (Z.le_ge_cases a (zlength l)).
  - rewrite !take_all; [reflexivity | rewrite zlength_drop; lia | rewrite zlength_drop; lia].
  - rewrite drop_all by lia. unfold take. now rewrite !firstn_nil.
Qed.

Lemma take_drop_slice (l : list ecma_value_t) a w : 0 <= a -> take w (drop a l) = slice l a (a + w).
Proof. intros. unfold slice. f_equal. lia. Qed.

Lemma zlength_pos_nonempty (l : list ecma_value_t) : 0 < zlength l -> l <> [].
Proof. intros H ->. unfold zlength in H. cbn in H. lia. Qed.

(** The merged pair at index [i] extends a pass *)
Lemma pass_wrote_pair w i e (source output output1 output' : list ecma_value_t) :
  0 < w -> 0 <= i < zlength source -> e = Z.min (i + 2 * w) (zlength source) -> zlength output = zlength source ->
  wrote i e (slice source i (Z.min (i + w) (zlength source)) ++ slice source (Z.min (i + w) (zlength source)) e)
    (merge le (slice source i (Z.min (i + w) (zlength source))) (slice source (Z.min (i + w) (zlength source)) e)) output output1 ->
  pass_wrote w (i + 2 * w) source output1 output' -> pass_wrote w i source output output'.
Proof.
  intros Hw Hi He Hl (m & -> & Hp & Hm) (m' & -> & Hp' & Hm'). set (len := zlength source) in *.
  rewrite slice_split in Hp by lia.
  assert (Hlm : zlength m = e - i).
  { unfold zlength. rewrite <- (Permutation_length Hp). fold (zlength (slice source i e)). unfold slice.
    rewrite zlength_take; [lia |]. rewrite zlength_drop by lia. fold len. lia. }
  assert (Ht : take (i + 2 * w) (take i output ++ m ++ drop e output) = take i output ++ m).
  { assert (Hli : zlength (take i output) = i) by (apply zlength_take; lia).
    destruct (Z.le_ge_cases (i + 2 * w) len).
    - rewrite app_assoc. apply take_app_exact. rewrite zlength_app. lia.
    - replace (drop e output) with (@nil ecma_value_t) by (symmetry; apply drop_all; lia). rewrite app_nil_r. apply take_all. rewrite zlength_app. lia. }
  assert (Hd : drop (i + 2 * w) source = drop e source).
  { destruct (Z.le_ge_cases (i + 2 * w) len); [f_equal; lia |]. rewrite !drop_all by (fold len; lia). reflexivity. }
  exists (m ++ m'). splits.
  - rewrite Ht. now rewrite <- app_assoc.
  - rewrite <- Hp, <- Hp', Hd. unfold slice. replace (drop e source) with (drop (e - i) (drop i source)) by (rewrite drop_drop by lia; f_equal; lia).
    now rewrite take_drop.
  - intros H. rewrite (Hm H). replace (slice source i (Z.min (i + w) len)) with (take w (drop i source)).
    + replace (slice source (Z.min (i + w) len) e) with (take w (drop w (drop i source))).
      * apply pass_pair; [| rewrite drop_drop by lia; replace (2 * w + i) with (i + 2 * w) by lia; now apply Hm'].
        apply zlength_pos_nonempty. rewrite zlength_drop; fold len; lia.
      * rewrite drop_drop by lia. rewrite take_drop_slice by lia. replace (w + i + w) with (i + 2 * w) by lia.
        rewrite (slice_clip _ _ _ len) by (unfold len; lia). rewrite <- He.
        destruct (Z.le_ge_cases (i + w) len); [f_equal; lia |]. rewrite !slice_nil by lia. reflexivity.
    + rewrite take_drop_slice by lia. now apply slice_clip.
Qed.

Definition other (p : buffer) : buffer := match p with BASE_ARRAY => DEST_ARRAY | DEST_ARRAY => BASE_ARRAY end.

Lemma load_store m p a : load (store m p a) p = a.
Proof. now destruct p. Qed.
Lemma load_store_other m p a : load (store m (other p) a) p = load m p.
Proof. now destruct p. Qed.

(** The outcome of the inner loop from index [i] *)
Definition runs_outcome (w i : Z) (array_p : buffer) (m : sort_memory) (s : State) (res : option (bool * sort_memory * State)) : Prop :=
  exists err m' s', res = Some (err, m', s') /\ load m' array_p = load m array_p
    /\ zlength (load m' (other array_p)) = zlength (load m array_p)
    /\ count s <= count s' <= count s + Z.max 0 (zlength (load m array_p) - i) /\ (err = true -> may_fail)
    /\ (err = false -> pass_wrote w i (load m array_p) (load m (other array_p)) (load m' (other array_p))).

Lemma merge_runs_loop_spec w array_p fuel : forall i m s,
  let length := zlength (load m array_p) in
  zlength (load m (other array_p)) = length -> 0 < w < length -> length <= 2 ^ 31 -> 2 * w <= 2 ^ 31 ->
  0 <= i -> Z.max 0 (length - i) < Z.of_nat fuel ->
  runs_outcome w i array_p m s (merge_runs_loop sort_cb fuel length w i array_p (other array_p) m s).
Proof.
  induction fuel as [|fuel IH]; intros i m s length Hd Hw Hmax Hw2 Hi Hf; [lia |].
  cbn [merge_runs_loop]. destruct (Z.ltb_spec i length) as [Hil|Hil].
  2: { exists false, m, s. splits; try reflexivity; try lia. intros _. exists []. rewrite app_nil_r, take_all by lia.
       rewrite drop_all by (fold length; lia). splits; [reflexivity | reflexivity | intros _; constructor]. }
  replace (2 ^ 31) with 2147483648 in * by reflexivity. rewrite !u32_small by (unfold is_u32; lia).
  replace (if length <? i + w then length else i + w) with (Z.min (i + w) length)
    by (destruct (Z.ltb_spec length (i + w)); lia).
  replace (if length <? i + 2 * w then length else i + 2 * w) with (Z.min (i + 2 * w) length)
    by (destruct (Z.ltb_spec length (i + 2 * w)); lia).
  set (r := Z.min (i + w) length). set (e := Z.min (i + 2 * w) length).
  unfold ecma_builtin_helper_array_merge_sort_bottom_up.
  pose proof (bottom_up_loop_spec (load m array_p) r e (Z.to_nat (e - i)) i i r (load m (other array_p)) s
    ltac:(lia) ltac:(lia) ltac:(lia) ltac:(lia) ltac:(lia) ltac:(lia)) as (err & o & s1 & -> & Hlo & Hc & Hfail & Hok).
  destruct err.
  - exists true, (store m (other array_p) o), s1. rewrite load_store_other, load_store. fold length. splits; try reflexivity; try lia; try assumption.
  - assert (Hlen : zlength (load (store m (other array_p) o) array_p) = length) by now rewrite load_store_other.
    specialize (IH (i + 2 * w) (store m (other array_p) o) s1). cbv zeta in IH. rewrite Hlen, load_store in IH.
    destruct (IH ltac:(lia) Hw Hmax Hw2 ltac:(lia) ltac:(lia)) as (err & m' & s2 & -> & Hsrc & Hlen' & Hc' & Hfail' & Hok').
    rewrite load_store_other in *. rewrite load_store in Hok'. fold length in Hc', Hlen'. exists err, m', s2. splits; try assumption; try reflexivity; try lia.
    intros E. eapply pass_wrote_pair; [apply Hw | fold length; lia | reflexivity | exact Hd | exact (Hok eq_refl) | exact (Hok' E)].
Qed.

(** ** All passes *)

(** [runs w l l']: [l'] is [l] with each of its runs of width [w] sorted *)
Inductive runs (w : Z) : list ecma_value_t -> list ecma_value_t -> Prop :=
| runs_nil : runs w [] []
| runs_cons l l' : l <> [] -> runs w (drop w l) l' -> runs w l (stable_sort le (take w l) ++ l').

Lemma zlength_stable_sort l : zlength (stable_sort le l) = zlength l.
Proof. unfold zlength. now rewrite <- (Permutation_length (stable_sort_permutation le l)). Qed.

Lemma runs_start l : runs 1 l l.
Proof.
  induction l as [|x l IH]; [constructor |]. apply (runs_cons 1 (x :: l) l); [discriminate | exact IH].
Qed.

Lemma drop_nil w : drop w [] = [].
Proof. apply skipn_nil. Qed.
Lemma take_nil w : take w [] = [].
Proof. apply firstn_nil. Qed.

Lemma runs_view w l l' : 0 < w -> runs w l l' -> take w l' = stable_sort le (take w l) /\ runs w (drop w l) (drop w l').
Proof.
  intros Hw Hr. destruct Hr as [|l l' Hne Hr]; [rewrite !drop_nil, !take_nil; split; constructor |].
  destruct (Z.le_ge_cases w (zlength l)) as [Hl|Hl].
  - assert (Hlen : zlength (stable_sort le (take w l)) = w) by (rewrite zlength_stable_sort; apply zlength_take; lia).
    now rewrite take_app_exact, drop_app_exact.
  - rewrite (drop_all w l) in * by lia. inversion Hr as [| l1 l1' Hc]; subst; [| now destruct Hc]. rewrite app_nil_r, (take_all w l) by lia.
    rewrite take_all, drop_all by (rewrite zlength_stable_sort; lia). now split.
Qed.

Lemma runs_whole w l l' : 0 < w -> zlength l <= w -> runs w l l' -> l' = stable_sort le l.
Proof.
  intros Hw Hl Hr. destruct (runs_view w l l' Hw Hr) as [Ht Hd]. rewrite (take_all w l) in Ht by assumption.
  rewrite (drop_all w l) in Hd by assumption. rewrite <- Ht, <- (take_drop w l') at 1.
  inversion Hd as [| l1 l1' Hc]; [| now destruct Hc]. apply app_nil_r.
Qed.

Definition ordered : Prop :=
  (forall a b c, le a b = true -> le b c = true -> le a c = true) /\ (forall a b, le a b = true \/ le b a = true).

Lemma runs_pass w l' l'' : ordered -> 0 < w -> pass_of w l' l'' -> forall l, runs w l l' -> runs (2 * w) l l''.
Proof.
  intros [Htr Hto] Hw. induction 1 as [|l' l'' Hne Hp IH]; intros l Hr.
  - destruct (runs_view w l [] Hw Hr) as [Ht _]. rewrite take_nil in Ht. destruct l as [|x l]; [constructor |]. exfalso.
    apply (f_equal zlength) in Ht. rewrite zlength_stable_sort in Ht.
    unfold zlength, take in Ht. replace (Z.to_nat w) with (S (Z.to_nat w - 1)) in Ht by lia. cbn in Ht. lia.
  - destruct (runs_view w l l' Hw Hr) as [Ht Hd]. destruct (runs_view w _ _ Hw Hd) as [Ht2 Hd2]. rewrite Ht, Ht2, merge_stable_sort by assumption.
    rewrite !drop_drop in Hd2 by lia. replace (w + w) with (2 * w) in Hd2 by lia.
    replace (take w l ++ take w (drop w l)) with (take (2 * w) l).
    + apply runs_cons; [| now apply IH]. intros ->. inversion Hr as [E|]; [now apply Hne |]. now destruct H.
    + pose proof (slice_split l 0 w (2 * w) ltac:(lia) ltac:(lia)) as E. unfold slice in E. rewrite !Z.sub_0_r in E.
      change (drop 0 l) with l in E. replace (2 * w - w) with w in E by lia. now symmetry.
Qed.

(** What the outer loop maintains, and its outcome *)
Definition passes_outcome (passes : Z) (w : Z) (l : list ecma_value_t) (s : State)
    (res : option (bool * buffer * buffer * sort_memory * State)) : Prop :=
  exists err array_p m' s', res = Some (err, array_p, other array_p, m', s')
    /\ zlength (load m' array_p) = zlength l /\ zlength (load m' (other array_p)) = zlength l /\ Permutation l (load m' array_p)
    /\ (err = true -> may_fail) /\ (ordered -> consistent le -> load m' array_p = stable_sort le l)
    /\ count s <= count s' <= count s + zlength l * Z.max 0 passes.

Lemma merge_passes_loop_spec l fuel : forall p array_p m s,
  let w := 2 ^ Z.of_nat p in
  zlength (load m array_p) = zlength l -> zlength (load m (other array_p)) = zlength l -> zlength l <= 2 ^ 31 ->
  (p <= 31)%nat -> (32 <= p + fuel)%nat ->
  Permutation l (load m array_p) -> (ordered -> consistent le -> runs w l (load m array_p)) ->
  passes_outcome (Z.log2_up (zlength l) - Z.of_nat p) w l s
    (merge_passes_loop sort_cb fuel (S (Z.to_nat (zlength l))) (zlength l) w array_p (other array_p) m s).
Proof.
  induction fuel as [|fuel IH]; intros p array_p m s w Hl Hd Hmax Hp Hf Hperm Hruns; [lia |].
  assert (Hw : 0 < w) by (apply Z.pow_pos_nonneg; lia). cbn [merge_passes_loop]. pose proof (zlength_nonneg l) as H0.
  destruct (Z.ltb_spec w (zlength l)) as [Hwl|Hwl].
  2: { exists false, array_p, m, s. pose proof (Z.mul_nonneg_nonneg (zlength l) (Z.max 0 (Z.log2_up (zlength l) - Z.of_nat p)) H0 ltac:(lia)).
       splits; try reflexivity; try assumption; try lia. intros Ho Hc.
       now apply (runs_whole w); [| | apply Hruns]. }
  assert (Hp30 : (p <= 30)%nat) by (destruct (Nat.le_gt_cases p 30); [assumption |];
    assert (Hw' : 2 ^ 31 <= w) by (apply Z.pow_le_mono_r; lia); lia).
  assert (Hw2 : 2 * w = 2 ^ Z.of_nat (S p)) by (unfold w; rewrite Nat2Z.inj_succ, Z.pow_succ_r by lia; reflexivity).
  assert (Hw31 : 2 * w <= 2 ^ 31) by (rewrite Hw2; apply Z.pow_le_mono_r; lia).
  pose proof (merge_runs_loop_spec w array_p (S (Z.to_nat (zlength l))) 0 m s) as Hrun. cbv zeta in Hrun. rewrite Hl in Hrun.
  destruct (Hrun Hd ltac:(lia) Hmax Hw31 ltac:(lia) ltac:(lia)) as (err & m' & s1 & -> & Hsrc & Hlen & Hc & Hfail & Hok).
  rewrite Hl in Hc, Hlen. rewrite Z.sub_0_r, Z.max_r in Hc by lia.
  assert (Hlog : Z.of_nat p < Z.log2_up (zlength l)) by (apply Z.log2_up_lt_pow2; [lia | exact Hwl]).
  destruct err.
  - exists true, array_p, m', s1. rewrite Hsrc. splits; try assumption; try reflexivity; try lia.
    2: { pose proof (Z.mul_le_mono_nonneg_l 1 (Z.max 0 (Z.log2_up (zlength l) - Z.of_nat p)) (zlength l) H0 ltac:(lia)). lia. }
    intros _ Hc'. discriminate (consistent_never_fails le true Hfail Hc').
  - destruct (Hok eq_refl) as (seg & Eseg & Hps & Hpass). change (take 0 (load m (other array_p))) with (@nil ecma_value_t) in Eseg.
    change (drop 0 (load m array_p)) with (load m array_p) in *. cbn [app] in Eseg.
    assert (Hother : other (other array_p) = array_p) by now destruct array_p.
    replace (u32 (2 * w)) with (2 ^ Z.of_nat (S p)) by (rewrite <- Hw2, u32_small; [reflexivity | unfold is_u32; lia]).
    specialize (IH (S p) (other array_p) m' s1). cbv zeta in IH. rewrite Hother in IH.
    destruct IH as (err & ap & m2 & s2 & -> & Hl1 & Hl2 & Hp2 & Hf2 & Ho2 & Hc2); try lia.
    + now rewrite Hsrc.
    + rewrite Hperm, Hps, Eseg. reflexivity.
    + intros Ho Hcon. rewrite <- Hw2, Eseg. apply (runs_pass w (load m array_p)); try assumption; [now apply Hpass | now apply Hruns].
    + exists err, ap, m2, s2. splits; try assumption; try reflexivity; [lia |]. clear - Hc Hc2 Hlog H0.
      replace (Z.log2_up (zlength l) - Z.of_nat (S p)) with (Z.log2_up (zlength l) - Z.of_nat p - 1) in Hc2 by lia.
      rewrite Z.max_r in Hc2 |- * by lia. lia.
Qed.

Lemma copy_back_loop_spec source n : forall index array, 0 <= index -> zlength array = zlength source ->
  Z.of_nat n = zlength source - index -> copy_back_loop n index source array = Some (take index array ++ drop index source).
Proof.
  induction n as [|n IH]; intros index array Hi Hl Hn; cbn [copy_back_loop].
  - rewrite take_all, drop_all by lia. now rewrite app_nil_r.
  - destruct (slice_cons source index (zlength source) ltac:(lia) ltac:(lia)) as (v & -> & Ev).
    destruct (array_set_spec array index v ltac:(lia)) as (a1 & -> & Hl1 & Ht & _). rewrite IH by lia. rewrite Ht, <- app_assoc. f_equal. f_equal.
    unfold slice in Ev. rewrite !take_all in Ev by (rewrite zlength_drop; lia). now rewrite Ev.
Qed.

(** The whole routine *)
Lemma merge_sort_helper_spec array dest s : zlength dest = zlength array -> zlength array <= 2 ^ 31 ->
  exists outcome, ecma_builtin_helper_array_merge_sort_helper sort_cb array dest s = Some outcome
    /\ finalized outcome = DEST_ARRAY /\ Permutation array (sorted_array outcome)
    /\ (sort_error outcome = true -> may_fail)
    /\ (ordered -> consistent le -> sorted_array outcome = stable_sort le array)
    /\ count (sort_state outcome) <= count s + zlength array * Z.log2_up (zlength array).
Proof.
  intros Hd Hmax. unfold ecma_builtin_helper_array_merge_sort_helper.
  pose proof (merge_passes_loop_spec array pass_fuel 0 BASE_ARRAY {| base_buffer := array; dest_buffer := dest |} s) as Hs. cbv zeta in Hs.
  destruct Hs as (err & ap & m' & s' & E & Hl1 & Hl2 & Hp & Hf & Ho & Hc); try assumption; try reflexivity; try (unfold pass_fuel; lia).
  { intros _ _. apply runs_start. }
  pose proof (Z.log2_up_nonneg (zlength array)). rewrite Z.max_r in Hc by lia. rewrite Z.sub_0_r in Hc.
  change (2 ^ Z.of_nat 0) with 1 in E. cbn [other] in E. rewrite E. destruct ap; cbn [other buffer_eqb] in *.
  - eexists. split; [reflexivity |]. cbn. splits; try assumption; try reflexivity; lia.
  - pose proof (zlength_nonneg array). rewrite copy_back_loop_spec by lia. eexists. split; [reflexivity |]. cbn [finalized sorted_array sort_error sort_state load store base_buffer].
    change (take 0 ?l) with (@nil ecma_value_t). change (drop 0 ?l) with l. cbn [app]. splits; try assumption; try reflexivity; lia.
Qed.
End Correct.

(** ** Correctness *)

(** C39: When the callback answers as a total preorder does, in whatever state
    it is called, the sort returns without error and leaves in the caller's
    array a permutation of its values that is sorted and stable (the values
    that compare equal to any given one are in their original order), and it
    gives back to the heap its copy and never the caller's array; no index
    leaves the arrays and every loop ends, for each length up to 2^31, where
    i + 2 * w just does not wrap around. *)
Theorem merge_sort_correct {State : Type} (sort_cb : ecma_value_t -> ecma_value_t -> State -> compare_value * State) le array dest s
  (Htrans : forall a b c, le a b = true -> le b c = true -> le a c = true) (Htotal : forall a b, le a b = true \/ le b a = true)
  (Hcb : consistent sort_cb le) (Hdest : zlength dest = zlength array) (Hlen : zlength array <= 2 ^ 31) :
  exists outcome, ecma_builtin_helper_array_merge_sort_helper sort_cb array dest s = Some outcome
    /\ sort_error outcome = false /\ finalized outcome = DEST_ARRAY
    /\ Permutation array (sorted_array outcome)
    /\ StronglySorted (fun a b => le a b = true) (sorted_array outcome)
    /\ (forall x, filter (equal_to le x) (sorted_array outcome) = filter (equal_to le x) array).
Proof.
  destruct (merge_sort_helper_spec sort_cb le (fun _ => 0) ltac:(intros; cbn; lia) array dest s Hdest Hlen)
    as (o & E & Hf & Hp & He & Ho & _). exists o. specialize (Ho (conj Htrans Htotal) Hcb).
  splits; try assumption; [now apply (consistent_never_fails sort_cb le) | |].
  - rewrite Ho. now apply stable_sort_sorted.
  - intros x. rewrite Ho. now apply stable_sort_stable.
Qed.

(** C40: Whatever the callback answers, and whether or not it throws, the sort
    of up to 2^31 values ends inside its arrays and leaves a permutation of the values in the
    caller's array (no reference is lost or duplicated), reports an error only
    if a comparison did, frees its own copy, and compares at most
    n * ceil(log2 n) times. *)
Theorem merge_sort_safe {State : Type} (sort_cb : ecma_value_t -> ecma_value_t -> State -> compare_value * State)
  (count : State -> Z) array dest s
  (Hcount : forall a b s, count s <= count (snd (sort_cb a b s)) <= count s + 1)
  (Hdest : zlength dest = zlength array) (Hlen : zlength array <= 2 ^ 31) :
  exists outcome, ecma_builtin_helper_array_merge_sort_helper sort_cb array dest s = Some outcome
    /\ finalized outcome = DEST_ARRAY /\ Permutation array (sorted_array outcome)
    /\ (sort_error outcome = true -> exists a b s, fst (sort_cb a b s) = COMPARE_ERROR)
    /\ count (sort_state outcome) <= count s + zlength array * Z.log2_up (zlength array).
Proof.
  destruct (merge_sort_helper_spec sort_cb (fun _ _ => true) count Hcount array dest s Hdest Hlen)
    as (o & E & Hf & Hp & He & _ & Hc). exists o. splits; try assumption.
Qed.

(** Comparison by tens that counts its calls; it throws on multiples of 1000 *)
Definition number_one : Z := 4607182418800017408.
Definition number_nan : Z := 9221120237041090560.

Definition by_tens (a b calls : Z) : compare_value * Z :=
  (if (a mod 1000 =? 0) || (b mod 1000 =? 0) then COMPARE_ERROR
   else COMPARE_NUMBER (if a / 10 <=? b / 10 then 0 else number_one), calls + 1).

Definition tens_total (a b calls : Z) : compare_value * Z :=
  (COMPARE_NUMBER (if a / 10 <=? b / 10 then 0 else number_one), calls + 1).

Lemma merge_sort_correct_witness :
  ecma_builtin_helper_array_merge_sort_helper tens_total [35; 21; 34; 10; 22; 33; 12] [0; 0; 0; 0; 0; 0; 0] 0
    = Some {| sort_error := false; sorted_array := [10; 12; 21; 22; 35; 34; 33]; finalized := DEST_ARRAY; sort_state := 13 |}
  /\ exists outcome, ecma_builtin_helper_array_merge_sort_helper tens_total [35; 21; 34; 10; 22; 33; 12] [0; 0; 0; 0; 0; 0; 0] 0 = Some outcome
    /\ sort_error outcome = false /\ finalized outcome = DEST_ARRAY
    /\ Permutation [35; 21; 34; 10; 22; 33; 12] (sorted_array outcome)
    /\ StronglySorted (fun a b => (a / 10 <=? b / 10) = true) (sorted_array outcome)
    /\ (forall x, filter (equal_to (fun a b => a / 10 <=? b / 10) x) (sorted_array outcome)
                  = filter (equal_to (fun a b => a / 10 <=? b / 10) x) [35; 21; 34; 10; 22; 33; 12]).
Proof.
  split; [vm_compute; reflexivity |].
  apply (merge_sort_correct tens_total (fun a b => a / 10 <=? b / 10)).
  - intros a b c H1 H2. apply Z.leb_le in H1, H2. apply Z.leb_le. lia.
  - intros a b. rewrite !Z.leb_le. lia.
  - intros a b s. eexists. split; [reflexivity |]. destruct (a / 10 <=? b / 10); reflexivity.
  - reflexivity.
  - vm_compute. discriminate.
Defined.

Lemma merge_sort_safe_witness :
  ecma_builtin_helper_array_merge_sort_helper by_tens [35; 21; 34; 10; 22; 1000; 12] [0; 0; 0; 0; 0; 0; 0] 0
    = Some {| sort_error := true; sorted_array := [35; 21; 34; 10; 22; 1000; 12]; finalized := DEST_ARRAY; sort_state := 3 |}
  /\ exists outcome, ecma_builtin_helper_array_merge_sort_helper by_tens [35; 21; 34; 10; 22; 1000; 12] [0; 0; 0; 0; 0; 0; 0] 0 = Some outcome
    /\ finalized outcome = DEST_ARRAY /\ Permutation [35; 21; 34; 10; 22; 1000; 12] (sorted_array outcome)
    /\ (sort_error outcome = true -> exists a b s, fst (by_tens a b s) = COMPARE_ERROR)
    /\ sort_state outcome <= 0 + 7 * 3.
Proof.
  split; [vm_compute; reflexivity |].
  apply (merge_sort_safe by_tens (fun calls => calls)).
  - intros a b s. cbn. lia.
  - reflexivity.
  - vm_compute. discriminate.
Defined.

(** A comparison function that answers NaN keeps the order of the values
    according to ECMA-262 (NaN counts as +0); the test for <= 0 takes it for a
    positive number and the sort reverses equal runs. *)
Lemma merge_sort_nan_reorders :
  ecma_builtin_helper_array_merge_sort_helper (fun _ _ (calls : Z) => (COMPARE_NUMBER number_nan, calls + 1)) [1; 2; 3] [0; 0; 0] 0
    = Some {| sort_error := false; sorted_array := [3; 2; 1]; finalized := DEST_ARRAY; sort_state := 2 |}.
Proof. vm_compute. reflexivity. Qed.
