(* ===== verification/JmemHeap.v ===== *)
(** * The heap's list of free regions: src/jjs-core/jmem/jmem-heap.c

    The heap is one area of memory.  Its free regions are linked in address
    order through headers stored in the regions themselves, after a first node
    of size zero that lies in front of the area; allocated blocks have no
    header.  Memory is a map from addresses, counted from the start of the area,
    to the aligned 8-byte slot stored there, so the headers share the memory
    with the cells and pages of the cell allocator (Jmem) and with the data of
    the clients.  A read that finds no header where the code expects one is
    [FAULT]; the end of the process is [FATAL].

    The contents of the area are specified as a list of tiles; this file shows
    that the list operations of the code are a first-fit allocation and a
    coalescing release on tiles. *)
From Stdlib Require Import ZArith Lia.
From stdpp Require Import base gmap list.
From S2P Require Import Prelude.
#[local] Open Scope Z_scope.

Definition JMEM_ALIGNMENT : Z := 8.
Definition JMEM_HEAP_END_OF_LIST : Z := 4294967295.
Definition JMEM_CELLOCATOR_CELL_SIZE : Z := 32.

Record jmem_heap_free_t := mk_region { next_offset : Z; region_size : Z }.

(** Pointers into the area are offsets from its start, NULL is [None] *)
Record jmem_cellocator_page_t := mk_page { start_p : Z; end_p : Z; next_p : option Z }.

(** What a slot of memory holds *)
Inductive slot :=
| REGION (region : jmem_heap_free_t)
| CELL (next : option Z)
| PAGE (page : jmem_cellocator_page_t)
| DATA (word : Z).

(** What the memory manager must know of the engine: the blocks, with their
    sizes, that the next garbage collection will find unreachable, and those of
    the property hash maps of the other objects *)
Record engine_blocks := mk_engine { unreachable : list (Z * Z); hashmaps : list (Z * Z) }.
Definition pending (e : engine_blocks) : list (Z * Z) := unreachable e ++ hashmaps e.

(** The fields of the context the heap uses *)
Record jmem_context := mk_jmem {
  memory : gmap Z slot;
  jmem_heap_list_skip_p : Z;
  jmem_heap_allocated_size : Z;
  jmem_heap_limit : Z;
  cell_pages : option Z; (** jmem_cellocator_32.pages *)
  free_cells : option Z; (** jmem_cellocator_32.free_cells *)
  engine : engine_blocks
}.

(** The configuration of the context *)
Record jmem_config := mk_config { vm_heap_size : Z; gc_limit : Z; vm_cell_count : Z }.

(** The address of heap_p->first: in front of the area *)
Definition heap_first : Z := -8.

Definition JMEM_HEAP_AREA_SIZE (cfg : jmem_config) : Z := vm_heap_size cfg - JMEM_ALIGNMENT.

(** size rounded up to the alignment, in size_t *)
Definition jmem_align (size : Z) : Z := u64 (size + (JMEM_ALIGNMENT - 1)) / JMEM_ALIGNMENT * JMEM_ALIGNMENT.

(** ** The state monad of the memory manager *)

Inductive outcome (A : Type) :=
| DONE (a : A) (j : jmem_context)
| FATAL
| FAULT.
Arguments DONE {A} _ _.
Arguments FATAL {A}.
Arguments FAULT {A}.

Definition J (A : Type) : Type := jmem_context -> outcome A.

#[export] Instance J_ret : MRet J := fun A a j => DONE a j.
#[export] Instance J_bind : MBind J := fun A B f m j =>
  match m j with DONE a j => f a j | FATAL => FATAL | FAULT => FAULT end.

Definition fault {A} : J A := fun _ => FAULT.
Definition get_context : J jmem_context := fun j => DONE j j.

Definition set_memory (f : gmap Z slot -> gmap Z slot) : J unit := fun j =>
  DONE tt (mk_jmem (f (memory j)) (jmem_heap_list_skip_p j) (jmem_heap_allocated_size j) (jmem_heap_limit j) (cell_pages j) (free_cells j) (engine j)).
Definition set_skip (p : Z) : J unit := fun j =>
  DONE tt (mk_jmem (memory j) p (jmem_heap_allocated_size j) (jmem_heap_limit j) (cell_pages j) (free_cells j) (engine j)).
Definition set_allocated (n : Z) : J unit := fun j =>
  DONE tt (mk_jmem (memory j) (jmem_heap_list_skip_p j) n (jmem_heap_limit j) (cell_pages j) (free_cells j) (engine j)).
Definition set_limit (n : Z) : J unit := fun j =>
  DONE tt (mk_jmem (memory j) (jmem_heap_list_skip_p j) (jmem_heap_allocated_size j) n (cell_pages j) (free_cells j) (engine j)).

(** *region_p *)
Definition read_region (p : Z) : J jmem_heap_free_t := fun j =>
  match memory j !! p with Some (REGION r) => DONE r j | _ => FAULT end.
Definition write_region (p : Z) (r : jmem_heap_free_t) : J unit := set_memory <[p := REGION r]>.

(** region_p->next_offset = next and region_p->size = size; the other field of
    the header is kept, or undetermined (here 0) in memory that held none *)
Definition set_next (p next : Z) : J unit :=
  set_memory (fun m => <[p := REGION (mk_region next (match m !! p with Some (REGION r) => region_size r | _ => 0 end))]> m).
Definition set_size (p size : Z) : J unit :=
  set_memory (fun m => <[p := REGION (mk_region (match m !! p with Some (REGION r) => next_offset r | _ => 0 end) size)]> m).

(** ** The operations on the list *)

Section Operations.
Context (cfg : jmem_config).

(** Enough for a list of all regions of the area *)
Definition list_fuel : nat := Z.to_nat (JMEM_HEAP_AREA_SIZE cfg).

(** while (allocated_size >= limit) limit += gc_limit *)
Fixpoint raise_limit (fuel : nat) (allocated limit : Z) : Z :=
  match fuel with
  | O => limit
  | S fuel => if limit <=? allocated then raise_limit fuel allocated (u64 (limit + gc_limit cfg)) else limit
  end.

(** while (allocated_size + gc_limit <= limit) limit -= gc_limit *)
Fixpoint lower_limit (fuel : nat) (allocated limit : Z) : Z :=
  match fuel with
  | O => limit
  | S fuel => if u64 (allocated + gc_limit cfg) <=? limit then lower_limit fuel allocated (u64 (limit - gc_limit cfg)) else limit
  end.

(** allocated_size += size, and the loop that raises the limit *)
Definition account_allocation (size : Z) : J unit :=
  j ← get_context;
  let allocated := u64 (jmem_heap_allocated_size j + size) in
  set_allocated allocated;;
  set_limit (raise_limit (S (Z.to_nat (allocated - jmem_heap_limit j + 1))) allocated (jmem_heap_limit j)).

(** allocated_size -= size, and the loop that lowers the limit *)
Definition account_release (size : Z) : J unit :=
  j ← get_context;
  let allocated := u64 (jmem_heap_allocated_size j - size) in
  set_allocated allocated;;
  set_limit (lower_limit (S (Z.to_nat (jmem_heap_limit j - allocated))) allocated (jmem_heap_limit j)).

(** Region sufficiently big: the branch of the loop that takes the region *)
Definition take_region (required_size current_offset prev_p : Z) (current : jmem_heap_free_t) : J (option Z) :=
  (if required_size <? region_size current then
     let remaining_p := current_offset + required_size in
     write_region remaining_p (mk_region (next_offset current) (u32 (region_size current - u32 required_size)));;
     set_next prev_p (u32 remaining_p)
   else set_next prev_p (next_offset current));;
  set_skip prev_p;;
  account_allocation required_size;;
  mret (Some current_offset).

(** The loop over the list in jmem_heap_alloc *)
Fixpoint alloc_loop (fuel : nat) (required_size current_offset prev_p : Z) : J (option Z) :=
  match fuel with
  | O => fault
  | S fuel =>
      if current_offset =? JMEM_HEAP_END_OF_LIST then mret None
      else
        current ← read_region current_offset;
        if required_size <=? region_size current then take_region required_size current_offset prev_p current
        else alloc_loop fuel required_size (next_offset current) current_offset
  end.

(** The fast path of jmem_heap_alloc for a block of JMEM_ALIGNMENT bytes, which
    takes the front of the first region at [data_space_p] *)
Definition alloc_first (data_space_p : Z) : J (option Z) :=
  j ← get_context;
  let allocated := u64 (jmem_heap_allocated_size j + JMEM_ALIGNMENT) in
  set_allocated allocated;;
  set_limit (if jmem_heap_limit j <=? allocated then u64 (jmem_heap_limit j + gc_limit cfg) else jmem_heap_limit j);;
  data_space ← read_region data_space_p;
  (if region_size data_space =? JMEM_ALIGNMENT then set_next heap_first (next_offset data_space)
   else
     let remaining_p := data_space_p + JMEM_ALIGNMENT in
     write_region remaining_p (mk_region (next_offset data_space) (u32 (region_size data_space - JMEM_ALIGNMENT)));;
     set_next heap_first (u32 remaining_p));;
  first ← read_region heap_first;
  (if data_space_p =? jmem_heap_list_skip_p j then set_skip (next_offset first) else mret tt);;
  mret (Some data_space_p).

(** jmem_heap_alloc, from behind the branch for the cell allocator *)
Definition alloc_region (required_size : Z) : J (option Z) :=
  first ← read_region heap_first;
  if (required_size =? JMEM_ALIGNMENT) && negb (next_offset first =? JMEM_HEAP_END_OF_LIST)
  then alloc_first (next_offset first)
  else alloc_loop list_fuel required_size (next_offset first) heap_first.

Fixpoint find_prev_loop (fuel : nat) (prev_p block_offset : Z) : J Z :=
  match fuel with
  | O => fault
  | S fuel =>
      prev ← read_region prev_p;
      if next_offset prev <? block_offset then find_prev_loop fuel (next_offset prev) block_offset
      else mret prev_p
  end.

Definition jmem_heap_find_prev (block_p : Z) : J Z :=
  j ← get_context;
  let prev_p := if jmem_heap_list_skip_p j <? block_p then jmem_heap_list_skip_p j else heap_first in
  find_prev_loop list_fuel prev_p (u32 block_p).

Definition jmem_heap_insert_block (block_p prev_p size : Z) : J unit :=
  prev ← read_region prev_p;
  let next_p := next_offset prev in
  block_p ← (if prev_p + region_size prev =? block_p
             then set_size prev_p (u32 (region_size prev + u32 size));; mret prev_p
             else set_size block_p (u32 size);; set_next prev_p (u32 block_p);; mret block_p);
  block ← read_region block_p;
  (if block_p + region_size block =? next_p then
     next ← read_region next_p;
     write_region block_p (mk_region (next_offset next) (u32 (region_size block + region_size next)))
   else set_next block_p (u32 next_p));;
  set_skip prev_p.

(** jmem_heap_free_block_internal, from behind the branch for cells *)
Definition free_region (ptr size : Z) : J unit :=
  let aligned_size := jmem_align size in
  prev_p ← jmem_heap_find_prev ptr;
  jmem_heap_insert_block ptr prev_p aligned_size;;
  account_release aligned_size.
End Operations.

(** ** The area as a list of tiles *)

Inductive tile := FREE (n : Z) | USED (n : Z).

#[export] Instance tile_eq_dec : EqDecision tile.
Proof. solve_decision. Defined.

Definition tile_size (t : tile) : Z := match t with FREE n | USED n => n end.
Fixpoint total (ts : list tile) : Z := match ts with [] => 0 | t :: ts => tile_size t + total ts end.

(** The free regions and the allocated blocks of the tiles from address [base] *)
Fixpoint regions (base : Z) (ts : list tile) : list (Z * Z) :=
  match ts with
  | [] => []
  | FREE n :: ts => (base, n) :: regions (base + n) ts
  | USED n :: ts => regions (base + n) ts
  end.
Fixpoint blocks (base : Z) (ts : list tile) : gmap Z Z :=
  match ts with
  | [] => ∅
  | FREE n :: ts => blocks (base + n) ts
  | USED n :: ts => <[base := n]> (blocks (base + n) ts)
  end.
Fixpoint used (ts : list tile) : Z :=
  match ts with [] => 0 | FREE _ :: ts => used ts | USED n :: ts => n + used ts end.

(** Release with coalescing of neighbours *)
Fixpoint coalesce (ts : list tile) : list tile :=
  match ts with
  | [] => []
  | FREE n :: ts => match coalesce ts with FREE n' :: ts => FREE (n + n') :: ts | ts => FREE n :: ts end
  | USED n :: ts => USED n :: coalesce ts
  end.

(** First fit: the tiles in front of the chosen region, its size, the rest *)
Fixpoint first_fit (n : Z) (ts : list tile) : option (list tile * Z * list tile) :=
  match ts with
  | [] => None
  | t :: ts =>
      match t with
      | FREE s => if n <=? s then Some ([], s, ts) else
          match first_fit n ts with Some (pre, s', post) => Some (t :: pre, s', post) | None => None end
      | USED _ => match first_fit n ts with Some (pre, s', post) => Some (t :: pre, s', post) | None => None end
      end
  end.

Definition free_tile (n : Z) (ts : list tile) : list tile := if n =? 0 then ts else FREE n :: ts.

(** No two free tiles are neighbours *)
Fixpoint separated (ts : list tile) : Prop :=
  match ts with
  | [] => True
  | FREE _ :: ts => match ts with FREE _ :: _ => False | _ => separated ts end
  | USED _ :: ts => separated ts
  end.

Definition tile_ok (t : tile) : Prop := 0 < tile_size t /\ (JMEM_ALIGNMENT | tile_size t).

(** *** Facts on tiles *)

Lemma total_app ts1 ts2 : total (ts1 ++ ts2) = total ts1 + total ts2.
Proof. induction ts1; cbn; lia. Qed.
Lemma used_app ts1 ts2 : used (ts1 ++ ts2) = used ts1 + used ts2.
Proof. induction ts1 as [|[] ts1 IH]; cbn; lia. Qed.
Lemma regions_app base ts1 ts2 : regions base (ts1 ++ ts2) = regions base ts1 ++ regions (base + total ts1) ts2.
Proof.
  revert base. induction ts1 as [|[] ts1 IH]; intros base; cbn; [f_equal; lia | |]; rewrite IH, Z.add_assoc; reflexivity.
Qed.

Lemma total_nonneg ts : Forall tile_ok ts -> 0 <= total ts.
Proof. induction 1 as [|t ts [H _] Hts IH]; cbn; lia. Qed.
Lemma used_bounds ts : Forall tile_ok ts -> 0 <= used ts <= total ts.
Proof. induction 1 as [|[] ts [H _] Hts IH]; cbn in *; lia. Qed.

Lemma regions_bounds base ts o n : Forall tile_ok ts -> (o, n) ∈ regions base ts -> base <= o /\ 0 < n /\ o + n <= base + total ts.
Proof.
  intros Hok. revert base. induction Hok as [|t ts [Ht _] Hts IH]; intros base; cbn; [rewrite elem_of_nil; tauto |].
  pose proof (total_nonneg ts Hts). destruct t as [m|m]; cbn in *; [rewrite elem_of_cons; intros [E|E] | intros E].
  - injection E as -> ->. lia.
  - specialize (IH _ E). lia.
  - specialize (IH _ E). lia.
Qed.

Lemma blocks_bounds base ts o n : Forall tile_ok ts -> blocks base ts !! o = Some n -> base <= o /\ 0 < n /\ o + n <= base + total ts.
Proof.
  intros Hok. revert base. induction Hok as [|t ts [Ht _] Hts IH]; intros base; cbn; [rewrite lookup_empty; discriminate |].
  pose proof (total_nonneg ts Hts). destruct t as [m|m]; cbn in *; intros E.
  - specialize (IH _ E). lia.
  - apply lookup_insert_Some in E as [[-> ->]|[_ E]]; [lia | specialize (IH _ E); lia].
Qed.

(** Coalescing keeps the blocks and the sizes *)
Lemma total_coalesce ts : total (coalesce ts) = total ts.
Proof. induction ts as [|[] ts IH]; cbn; [reflexivity | | lia]. destruct (coalesce ts) as [|[] ts']; cbn in *; lia. Qed.
Lemma used_coalesce ts : used (coalesce ts) = used ts.
Proof. induction ts as [|[] ts IH]; cbn; [reflexivity | | lia]. destruct (coalesce ts) as [|[] ts']; cbn in *; lia. Qed.
Lemma blocks_coalesce base ts : blocks base (coalesce ts) = blocks base ts.
Proof.
  revert base. induction ts as [|[n|n] ts IH]; intros base; cbn; [reflexivity | | now rewrite IH].
  rewrite <- IH. destruct (coalesce ts) as [|[n'|n'] ts']; cbn; try reflexivity. f_equal. lia.
Qed.
Lemma coalesce_ok ts : Forall tile_ok ts -> Forall tile_ok (coalesce ts).
Proof.
  induction 1 as [|[n|n] ts Ht Hts IH]; cbn; [constructor | | now constructor].
  destruct (coalesce ts) as [|[n'|n'] ts']; try now constructor. apply Forall_cons in IH as [H' IH]. constructor; [| assumption].
  unfold tile_ok in *. cbn in *. split; [lia | apply Z.divide_add_r; tauto].
Qed.
Lemma coalesce_separated ts : separated (coalesce ts).
Proof. induction ts as [|[n|n] ts IH]; cbn; try tauto. destruct (coalesce ts) as [|[n'|n'] ts']; cbn in *; tauto. Qed.
Lemma coalesce_id ts : separated ts -> coalesce ts = ts.
Proof.
  induction ts as [|[n|n] ts IH]; cbn; [reflexivity | | intros H; now rewrite IH].
  destruct ts as [|[n'|n'] ts]; [reflexivity | tauto |]. intros H. now rewrite IH.
Qed.
Lemma coalesce_app_used pre n post : coalesce (pre ++ USED n :: post) = coalesce pre ++ USED n :: coalesce post.
Proof.
  induction pre as [|[m|m] pre IH]; cbn; [reflexivity | | now rewrite IH]. rewrite IH.
  now destruct (coalesce pre) as [|[m'|m'] pre'].
Qed.
Lemma separated_app_used pre n post : separated (pre ++ USED n :: post) <-> separated pre /\ separated post.
Proof.
  induction pre as [|[m|m] pre IH]; cbn; [tauto | | tauto]. destruct pre as [|[m'|m'] pre]; cbn in *; tauto.
Qed.
Lemma separated_app pre post : separated (pre ++ post) -> separated pre /\ separated post.
Proof.
  induction pre as [|[m|m] pre IH]; cbn; [tauto | | tauto].
  destruct pre as [|[m'|m'] pre]; cbn in *; [destruct post as [|[]]; cbn in *; tauto | tauto | tauto].
Qed.

(** *** Segments of the list *)

(** From the pointer value [start] the headers in [m] link the regions [l] and
    end in the pointer value [stop] *)
Fixpoint seg (m : gmap Z slot) (start : Z) (l : list (Z * Z)) (stop : Z) : Prop :=
  match l with
  | [] => start = stop
  | (o, n) :: l => start = o /\ exists next, m !! o = Some (REGION (mk_region next n)) /\ seg m next l stop
  end.

Lemma seg_app m l1 l2 start stop : seg m start (l1 ++ l2) stop <-> exists mid, seg m start l1 mid /\ seg m mid l2 stop.
Proof.
  revert start. induction l1 as [|[o n] l1 IH]; intros start; cbn.
  - split; [intros H; now exists start | now intros (mid & -> & H)].
  - split.
    + intros (-> & next & Hm & H). apply IH in H as (mid & H1 & H2). exists mid. split; [| assumption]. split; [reflexivity |]. now exists next.
    + intros (mid & (-> & next & Hm & H1) & H2). split; [reflexivity |]. exists next. split; [assumption |]. apply IH. now exists mid.
Qed.

Lemma seg_frame m m' l start stop : (forall o, o ∈ l.*1 -> m' !! o = m !! o) -> seg m start l stop -> seg m' start l stop.
Proof.
  revert start. induction l as [|[o n] l IH]; intros start Hf; cbn; [tauto |]. intros (-> & next & Hm & H). split; [reflexivity |].
  exists next. split; [rewrite Hf; [assumption | apply elem_of_cons; now left] |]. apply IH; [| assumption].
  intros a Ha. apply Hf. apply elem_of_cons. now right.
Qed.

Lemma seg_insert m a v l start stop : a ∉ l.*1 -> seg m start l stop -> seg (<[a := v]> m) start l stop.
Proof. intros Ha. apply seg_frame. intros o Ho. apply lookup_insert_ne. intros <-. contradiction. Qed.

(** The nodes of the list: the first node and the free regions *)
Definition nodes (ts : list tile) : list (Z * Z) := (heap_first, 0) :: regions 0 ts.

(** [free_region] on nodes: behind the node (p, s), in front of [l2] *)
Definition absorb (o n : Z) (l2 : list (Z * Z)) : list (Z * Z) :=
  match l2 with
  | (q, t) :: l2' => if o + n =? q then (o, n + t) :: l2' else (o, n) :: l2
  | [] => [(o, n)]
  end.
Definition link (p s o n : Z) (l2 : list (Z * Z)) : list (Z * Z) :=
  if p + s =? o then absorb p (s + n) l2 else (p, s) :: absorb o n l2.

Lemma absorb_regions base n post : Forall tile_ok post ->
  regions base (coalesce (FREE n :: post)) = absorb base n (regions (base + n) (coalesce post)).
Proof.
  intros Hok. apply coalesce_ok in Hok. cbn. destruct (coalesce post) as [|[t|u] post']; cbn; [reflexivity | |].
  - rewrite Z.eqb_refl. f_equal. f_equal. lia.
  - apply Forall_cons in Hok as [[Hu _] Hok]. cbn in Hu. destruct (regions (base + n + u) post') as [|[q t] l] eqn:E; [reflexivity |].
    assert (Hq : (q, t) ∈ regions (base + n + u) post') by (rewrite E; apply elem_of_cons; now left).
    apply regions_bounds in Hq as (Hq & _); [| assumption]. cbn. now rewrite (proj2 (Z.eqb_neq _ _)) by lia.
Qed.

Lemma coalesce_free_free a b ts : coalesce (FREE a :: FREE b :: ts) = coalesce (FREE (a + b) :: ts).
Proof. cbn. destruct (coalesce ts) as [|[c|c] ts']; [reflexivity | | reflexivity]. now rewrite Z.add_assoc. Qed.

(** In front of a free tile, tiles that are separated from it stay as they are *)
Lemma coalesce_behind pre s ts : separated (pre ++ [FREE s]) -> coalesce (pre ++ ts) = pre ++ coalesce ts.
Proof.
  intros Hs. destruct pre as [|[x|x] pre' _] using rev_ind; [reflexivity | |].
  - rewrite <- app_assoc in Hs. apply separated_app in Hs as [_ []].
  - rewrite <- !app_assoc in *. cbn in *. apply separated_app_used in Hs as [Hs _]. now rewrite coalesce_app_used, (coalesce_id pre').
Qed.

Lemma coalesce_behind_used pre u ts : separated pre -> coalesce ((pre ++ [USED u]) ++ ts) = (pre ++ [USED u]) ++ coalesce ts.
Proof. intros Hs. rewrite <- !app_assoc. cbn. now rewrite coalesce_app_used, (coalesce_id pre). Qed.

Lemma nodes_app ts1 ts2 : nodes (ts1 ++ ts2) = nodes ts1 ++ regions (total ts1) ts2.
Proof. unfold nodes. now rewrite regions_app. Qed.

Lemma nodes_bounds ts o n : Forall tile_ok ts -> (o, n) ∈ nodes ts -> (o = heap_first /\ n = 0) \/ (0 <= o /\ 0 < n /\ o + n <= total ts).
Proof.
  intros Hok H. apply elem_of_cons in H as [H|H]; [left; now injection H | right]. apply regions_bounds in H; [lia | assumption].
Qed.

(** The effect of a release on the nodes *)
Lemma nodes_release pre n post ns p s : Forall tile_ok pre -> Forall tile_ok post -> separated pre -> separated post ->
  nodes pre = ns ++ [(p, s)] ->
  nodes (coalesce (pre ++ FREE n :: post)) = ns ++ link p s (total pre) n (regions (total pre + n) post).
Proof.
  intros Hpre Hpost Spre Spost E. unfold link. destruct pre as [|t pre' _] using rev_ind.
  - destruct ns as [|? [|? ?]]; try discriminate. injection E as <- <-. unfold nodes. cbn [app total].
    now rewrite absorb_regions, coalesce_id by assumption.
  - rewrite nodes_app, total_app in *. apply Forall_app in Hpre as [Hpre Ht]. apply Forall_cons in Ht as [[Ht _] _].
    destruct t as [s'|u]; cbn [regions total tile_size] in *.
    + apply app_inj_tail in E as [<- E]. injection E as <- <-. rewrite (proj2 (Z.eqb_eq _ _)) by lia.
      rewrite <- app_assoc. cbn [app]. rewrite (coalesce_behind _ s') by assumption.
      rewrite coalesce_free_free, nodes_app, absorb_regions by assumption. rewrite (coalesce_id post) by assumption. do 3 f_equal. lia.
    + rewrite app_nil_r in E. apply separated_app in Spre as [Spre _]. rewrite coalesce_behind_used by assumption.
      assert (Hp : (p, s) ∈ nodes pre') by (rewrite E; apply elem_of_app; right; now apply list_elem_of_singleton).
      apply nodes_bounds in Hp; [| assumption]. pose proof (total_nonneg pre' Hpre). unfold heap_first in *.
      rewrite (proj2 (Z.eqb_neq _ _)) by lia. rewrite nodes_app, nodes_app, total_app, absorb_regions, (coalesce_id post) by assumption.
      cbn [regions total tile_size]. now rewrite E, app_nil_r, <- app_assoc.
Qed.

(** The effect of an allocation on the nodes *)
Lemma nodes_allocate pre s post n : 0 <= s - n ->
  nodes (pre ++ USED n :: free_tile (s - n) post)
    = nodes pre ++ (if s =? n then regions (total pre + s) post else (total pre + n, s - n) :: regions (total pre + s) post).
Proof.
  intros Hn. rewrite nodes_app. cbn. unfold free_tile. destruct (Z.eqb_spec s n) as [->|Hne].
  - now rewrite Z.sub_diag.
  - rewrite (proj2 (Z.eqb_neq _ _)) by lia. cbn. now replace (total pre + n + (s - n)) with (total pre + s) by lia.
Qed.

(** ** Correctness of the operations on the list *)

Lemma bind_done {A B} (m : J A) (f : A -> J B) j a j' : m j = DONE a j' -> mbind f m j = f a j'.
Proof. unfold mbind, J_bind. now intros ->. Qed.

(** Run the parts of a computation that only touch the context *)
Ltac run_J :=
  unfold mbind, mret, J_bind, J_ret, get_context, set_memory, set_allocated, set_limit, set_skip;
  cbn beta iota delta [memory jmem_heap_list_skip_p jmem_heap_allocated_size jmem_heap_limit cell_pages free_cells engine].

Lemma bind_assoc {A B C} (m : J A) (f : A -> J B) (g : B -> J C) j : mbind g (mbind f m) j = mbind (fun a => mbind g (f a)) m j.
Proof. unfold mbind, J_bind. now destruct (m j). Qed.

Lemma read_region_done p j next n : memory j !! p = Some (REGION (mk_region next n)) -> read_region p j = DONE (mk_region next n) j.
Proof. unfold read_region. now intros ->. Qed.

(** The context with other memory and another skip pointer *)
Definition with_list (m : gmap Z slot) (skip : Z) (j : jmem_context) : jmem_context :=
  mk_jmem m skip (jmem_heap_allocated_size j) (jmem_heap_limit j) (cell_pages j) (free_cells j) (engine j).
Definition with_account (allocated limit : Z) (j : jmem_context) : jmem_context :=
  mk_jmem (memory j) (jmem_heap_list_skip_p j) allocated limit (cell_pages j) (free_cells j) (engine j).

Section Correct.
Context (cfg : jmem_config).

Record config_ok : Prop := {
  heap_size_range : JMEM_ALIGNMENT < vm_heap_size cfg < B32;
  heap_size_aligned : (JMEM_ALIGNMENT | JMEM_HEAP_AREA_SIZE cfg);
  gc_limit_range : 0 < gc_limit cfg < B32
}.
Hypothesis Hcfg : config_ok.

(** A block, with its size, that is in use but not accounted: while
    jmem_heap_realloc_block moves a block, it takes its size off the account first *)
Context (reserved : option (Z * Z)).
Definition reserve : Z := match reserved with Some (_, n) => n | None => 0 end.

(** Accounting: the limit stays within one gc_limit above the allocated size *)
Definition account_ok (j : jmem_context) (n : Z) : Prop :=
  jmem_heap_allocated_size j = n - reserve /\ n - reserve <= jmem_heap_limit j <= n + gc_limit cfg.

(** An allocation of at least the reserve brings the limit back to the allocated size *)
Definition limit_after (n : Z) (j : jmem_context) : Prop := reserve <= n -> jmem_heap_limit j <= jmem_heap_allocated_size j + gc_limit cfg.

Lemma raise_limit_spec fuel allocated limit : 0 <= allocated < B32 -> 0 <= limit <= 8589934592 -> allocated - limit + 1 < Z.of_nat fuel ->
  let limit' := raise_limit cfg fuel allocated limit in
  allocated < limit' /\ (limit' = limit \/ limit' <= allocated + gc_limit cfg).
Proof.
  pose proof (gc_limit_range Hcfg) as Hg. revert limit. induction fuel as [|fuel IH]; intros limit Ha Hl Hf; cbn [raise_limit]; [lia |].
  destruct (Z.leb_spec limit allocated); [| lia].
  replace (u64 (limit + gc_limit cfg)) with (limit + gc_limit cfg) by (unfold u64; rewrite Z.mod_small; lia).
  specialize (IH (limit + gc_limit cfg) Ha ltac:(lia) ltac:(lia)). cbv zeta in IH. lia.
Qed.

Lemma lower_limit_spec fuel allocated limit : 0 <= allocated < B32 -> 0 <= limit <= 17179869184 -> allocated <= limit -> limit - allocated < Z.of_nat fuel ->
  let limit' := lower_limit cfg fuel allocated limit in allocated <= limit' <= allocated + gc_limit cfg.
Proof.
  pose proof (gc_limit_range Hcfg) as Hg. revert limit. induction fuel as [|fuel IH]; intros limit Ha Hl Hle Hf; cbn [lower_limit]; [lia |].
  replace (u64 (allocated + gc_limit cfg)) with (allocated + gc_limit cfg) by (unfold u64; rewrite Z.mod_small; lia).
  destruct (Z.leb_spec (allocated + gc_limit cfg) limit); [| lia].
  replace (u64 (limit - gc_limit cfg)) with (limit - gc_limit cfg) by (unfold u64; rewrite Z.mod_small; lia).
  apply IH; lia.
Qed.

Lemma account_allocation_spec j a n : account_ok j a -> 0 <= reserve <= a -> 0 <= n -> a + n < B32 ->
  exists j', account_allocation cfg n j = DONE tt j' /\ account_ok j' (a + n) /\ limit_after n j'
    /\ j' = with_account (jmem_heap_allocated_size j') (jmem_heap_limit j') j.
Proof.
  intros [Ea El] Ha Hn Hmax. pose proof (gc_limit_range Hcfg). unfold account_allocation. run_J. rewrite Ea.
  replace (u64 (a - reserve + n)) with (a - reserve + n) by (unfold u64; rewrite Z.mod_small; lia). eexists. split; [reflexivity |].
  unfold account_ok, limit_after. cbn [jmem_heap_allocated_size jmem_heap_limit].
  pose proof (raise_limit_spec (S (Z.to_nat (a - reserve + n - jmem_heap_limit j + 1))) (a - reserve + n) (jmem_heap_limit j)) as H1. cbv zeta in H1. splits; try reflexivity; lia.
Qed.

Lemma account_release_spec j a n : account_ok j a -> 0 <= n -> 0 <= reserve <= a - n -> a < B32 ->
  exists j', account_release cfg n j = DONE tt j' /\ account_ok j' (a - n) /\ j' = with_account (jmem_heap_allocated_size j') (jmem_heap_limit j') j.
Proof.
  intros [Ea El] Hn Ha Hmax. pose proof (gc_limit_range Hcfg). unfold account_release. run_J. rewrite Ea.
  replace (u64 (a - reserve - n)) with (a - reserve - n) by (unfold u64; rewrite Z.mod_small; lia). eexists. split; [reflexivity |].
  split; [| reflexivity]. unfold account_ok. cbn [jmem_heap_allocated_size jmem_heap_limit]. split; [lia |].
  pose proof (lower_limit_spec (S (Z.to_nat (jmem_heap_limit j - (a - reserve - n)))) (a - reserve - n) (jmem_heap_limit j)) as H1. cbv zeta in H1. lia.
Qed.

(** The list of the heap represents the tiles [ts] *)
Record list_ok (j : jmem_context) (ts : list tile) : Prop := {
  list_tiles : Forall tile_ok ts;
  list_separated : separated ts;
  list_total : total ts = JMEM_HEAP_AREA_SIZE cfg;
  list_nodes : seg (memory j) heap_first (nodes ts) JMEM_HEAP_END_OF_LIST;
  list_skip : jmem_heap_list_skip_p j ∈ (nodes ts).*1
}.

(** And the accounts agree with them *)
Record heap_ok (j : jmem_context) (ts : list tile) : Prop := {
  heap_list : list_ok j ts;
  heap_account : account_ok j (used ts);
  heap_reserved : forall o n, reserved = Some (o, n) -> blocks 0 ts !! o = Some n
}.

Lemma regions_length base ts : Forall tile_ok ts -> Z.of_nat (length (regions base ts)) * JMEM_ALIGNMENT <= total ts.
Proof.
  intros Hok. revert base. induction Hok as [|t ts [Ht [k Hk]] Hts IH]; intros base; cbn; [lia |]. unfold JMEM_ALIGNMENT in *.
  destruct t as [n|n]; cbn [length tile_size] in *; specialize (IH (base + n)); lia.
Qed.

Lemma area_range : 0 < JMEM_HEAP_AREA_SIZE cfg < JMEM_HEAP_END_OF_LIST - 8.
Proof.
  pose proof (heap_size_range Hcfg). pose proof (heap_size_aligned Hcfg) as [k Hk].
  unfold JMEM_HEAP_AREA_SIZE, JMEM_ALIGNMENT, JMEM_HEAP_END_OF_LIST in *. lia.
Qed.

(** *** Finding a place in the list *)

(** The address the list goes on with after the nodes of [l2] are skipped *)
Definition head_address (l2 : list (Z * Z)) : Z := match l2 with (q, _) :: _ => q | [] => JMEM_HEAP_END_OF_LIST end.

Lemma seg_head m start l : seg m start l JMEM_HEAP_END_OF_LIST -> start = head_address l.
Proof. destruct l as [|[q t] l]; cbn; [tauto | now intros [-> _]]. Qed.

Lemma find_prev_loop_spec j bo l2 fuel : forall l1 p s,
  seg (memory j) p ((p, s) :: l1 ++ l2) JMEM_HEAP_END_OF_LIST -> (forall o, o ∈ l1.*1 -> o < bo) -> bo <= head_address l2 ->
  (length l1 < fuel)%nat ->
  exists ns q t, (p, s) :: l1 = ns ++ [(q, t)] /\ find_prev_loop fuel p bo j = DONE q j.
Proof.
  induction fuel as [|fuel IH]; intros l1 p s Hseg Hl1 Hl2 Hf; [lia |]. destruct Hseg as (_ & next & Hp & Hseg).
  cbn [find_prev_loop]. erewrite bind_done by (eapply read_region_done, Hp). cbn [next_offset].
  destruct l1 as [|[o n] l1]; cbn [app] in Hseg.
  - apply seg_head in Hseg as ->. rewrite (proj2 (Z.ltb_ge _ _)) by assumption. exists [], p, s. now split.
  - assert (Ho : next = o) by (now destruct Hseg as [-> _]). subst next.
    rewrite (proj2 (Z.ltb_lt o bo)) by (apply Hl1, elem_of_cons; now left).
    destruct (IH l1 o n) as (ns & q & t & E & Hd); [exact Hseg | | assumption | cbn in Hf; lia |].
    + intros a Ha. apply Hl1, elem_of_cons. now right.
    + exists ((p, s) :: ns), q, t. rewrite E. now split.
Qed.

(** *** Linking a block in *)

Lemma set_next_done p next n j : memory j !! p = Some (REGION n) ->
  set_next p next j = DONE tt (with_list (<[p := REGION (mk_region next (region_size n))]> (memory j)) (jmem_heap_list_skip_p j) j).
Proof. intros H. unfold set_next, set_memory. now rewrite H. Qed.
Lemma set_size_done p n r j : memory j !! p = Some (REGION r) ->
  set_size p n j = DONE tt (with_list (<[p := REGION (mk_region (next_offset r) n)]> (memory j)) (jmem_heap_list_skip_p j) j).
Proof. intros H. unfold set_size, set_memory. now rewrite H. Qed.

(** The second half of jmem_heap_insert_block: joining with the next region *)
Definition join_next (block_p next_p prev_p : Z) : J unit :=
  block ← read_region block_p;
  (if block_p + region_size block =? next_p then
     next ← read_region next_p;
     write_region block_p (mk_region (next_offset next) (u32 (region_size block + region_size next)))
   else set_next block_p (u32 next_p));;
  set_skip prev_p.

Lemma join_next_spec j b n garbage l2 prev_p : memory j !! b = Some (REGION (mk_region garbage n)) ->
  seg (memory j) (head_address l2) l2 JMEM_HEAP_END_OF_LIST -> b ∉ l2.*1 -> 0 <= n -> b + n < JMEM_HEAP_END_OF_LIST ->
  (forall q t, (q, t) ∈ l2 -> 0 <= t /\ n + t < B32 /\ 0 <= q < JMEM_HEAP_END_OF_LIST) ->
  exists m', join_next b (head_address l2) prev_p j = DONE tt (with_list m' prev_p j)
    /\ seg m' b (absorb b n l2) JMEM_HEAP_END_OF_LIST /\ (forall a, a <> b -> m' !! a = memory j !! a).
Proof.
  intros Hb Hseg Hnot Hn Hbn Hl2. unfold join_next. erewrite bind_done by (eapply read_region_done, Hb). cbn [region_size].
  unfold head_address, absorb in *. destruct l2 as [|[q t] l2].
  - rewrite (proj2 (Z.eqb_neq _ _)) by lia. erewrite bind_done by (eapply set_next_done, Hb). cbn [region_size].
    eexists. split; [reflexivity |]. cbn. split; [| intros; now apply lookup_insert_ne]. split; [reflexivity |].
    eexists. split; [apply lookup_insert_eq |]. reflexivity.
  - destruct (Hl2 q t) as (Ht & Hnt & Hq); [apply elem_of_cons; now left |]. rewrite fmap_cons, not_elem_of_cons in Hnot. cbn in Hnot.
    destruct (Z.eqb_spec (b + n) q) as [E|E].
    + destruct Hseg as (_ & next & Hqm & Hseg). rewrite bind_assoc, (bind_done _ _ _ _ _ (read_region_done _ _ _ _ Hqm)).
      unfold write_region. run_J. cbn [next_offset region_size]. rewrite u32_small by (unfold is_u32; lia).
      eexists. split; [reflexivity |]. split; [| intros; now apply lookup_insert_ne]. split; [reflexivity |].
      eexists. split; [apply lookup_insert_eq |]. apply seg_insert; tauto.
    + erewrite bind_done by (eapply set_next_done, Hb). cbn [region_size]. rewrite u32_small by (unfold is_u32, JMEM_HEAP_END_OF_LIST in *; lia).
      eexists. split; [reflexivity |]. split; [| intros; now apply lookup_insert_ne]. split; [reflexivity |].
      eexists. split; [apply lookup_insert_eq |]. apply seg_insert; [rewrite fmap_cons, not_elem_of_cons; tauto | assumption].
Qed.

Lemma insert_block_spec j ns p s bo n l2 :
  seg (memory j) heap_first (ns ++ (p, s) :: l2) JMEM_HEAP_END_OF_LIST ->
  p ∉ ns.*1 -> bo ∉ ns.*1 -> p ∉ l2.*1 -> bo ∉ l2.*1 -> p <> bo -> 0 <= s -> 0 < n -> 0 <= bo -> bo + n < JMEM_HEAP_END_OF_LIST -> p + s <= bo -> s + n < B32 ->
  p + s + n < JMEM_HEAP_END_OF_LIST ->
  (forall q t, (q, t) ∈ l2 -> 0 <= t /\ s + n + t < B32 /\ 0 <= q < JMEM_HEAP_END_OF_LIST) ->
  exists m', jmem_heap_insert_block bo p n j = DONE tt (with_list m' p j)
    /\ seg m' heap_first (ns ++ link p s bo n l2) JMEM_HEAP_END_OF_LIST
    /\ (forall a, a <> p -> a <> bo -> m' !! a = memory j !! a).
Proof.
  intros Hseg Hpns Hbns Hpl Hbl Hpb Hs Hn Hbo Hbn Hps Hsn Hpsn Hl2. apply seg_app in Hseg as (mid & Hns & -> & next & Hp & Hseg).
  pose proof (seg_head _ _ _ Hseg) as ->. unfold jmem_heap_insert_block. erewrite bind_done by (eapply read_region_done, Hp).
  cbn [next_offset region_size]. unfold link. rewrite !(u32_small n) by (unfold is_u32; lia). destruct (Z.eqb_spec (p + s) bo) as [E|E].
  - rewrite bind_assoc. erewrite bind_done by (eapply set_size_done, Hp). cbn [next_offset]. rewrite (u32_small (s + n)) by (unfold is_u32; lia).
    erewrite bind_done by reflexivity. set (j1 := with_list _ _ j).
    destruct (join_next_spec j1 p (s + n) (head_address l2) l2 p) as (m' & Hd & Hs' & Hf); try assumption; try lia.
    + apply lookup_insert_eq.
    + now apply seg_insert.
    + exists m'. split; [exact Hd |]. split.
      * apply seg_app. exists p. split; [| exact Hs']. eapply seg_frame; [| exact Hns]. intros o Ho.
        rewrite Hf by (intros ->; contradiction). cbn. apply lookup_insert_ne. intros ->. contradiction.
      * intros a Ha Hb. rewrite Hf by assumption. cbn. now apply lookup_insert_ne.
  - unfold mbind at 1, J_bind. unfold set_size. run_J. unfold set_next. run_J.
    rewrite lookup_insert_ne by congruence. rewrite Hp. cbn [region_size].
    rewrite (u32_small bo) by (unfold is_u32, JMEM_HEAP_END_OF_LIST in *; lia).
    set (g := match memory j !! bo with Some (REGION r) => next_offset r | _ => 0 end). set (m1 := <[p := _]> _).
    set (j1 := mk_jmem m1 _ _ _ _ _ _).
    destruct (join_next_spec j1 bo n g l2 p) as (m' & Hd & Hs' & Hf); try assumption; try lia.
    + cbn. unfold m1. rewrite lookup_insert_ne by congruence. apply lookup_insert_eq.
    + apply seg_insert; [assumption |]. now apply seg_insert.
    + intros q t Hqt. destruct (Hl2 q t Hqt). lia.
    + exists m'. split; [exact Hd |]. split.
      * apply seg_app. exists p. split.
        -- eapply seg_frame; [| exact Hns]. intros o Ho. rewrite Hf by (intros ->; contradiction). cbn. unfold m1.
           rewrite !lookup_insert_ne by (intros ->; contradiction). reflexivity.
        -- split; [reflexivity |]. exists bo. split; [| exact Hs']. rewrite Hf by assumption. cbn. apply lookup_insert_eq.
      * intros a Ha Hb. rewrite Hf by assumption. cbn. unfold m1. now rewrite !lookup_insert_ne by congruence.
Qed.

(** *** Addresses of nodes *)

Lemma regions_NoDup base ts : Forall tile_ok ts -> NoDup (regions base ts).*1.
Proof.
  intros Hok. revert base. induction Hok as [|t ts [Ht _] Hts IH]; intros base; cbn; [constructor |].
  destruct t as [n|n]; cbn in *; [| apply IH]. constructor; [| apply IH]. intros H. apply list_elem_of_fmap in H as ([o m] & -> & H).
  apply regions_bounds in H; [cbn in *; lia | assumption].
Qed.

Lemma nodes_NoDup ts : Forall tile_ok ts -> NoDup (nodes ts).*1.
Proof.
  intros Hok. unfold nodes. cbn. constructor; [| now apply regions_NoDup]. intros H. apply list_elem_of_fmap in H as ([o m] & E & H).
  apply regions_bounds in H; [cbn in *; unfold heap_first in *; lia | assumption].
Qed.

Lemma nodes_below ts o : Forall tile_ok ts -> o ∈ (nodes ts).*1 -> o < total ts /\ heap_first <= o.
Proof.
  intros Hok H. apply list_elem_of_fmap in H as ([q t] & -> & H). pose proof (total_nonneg ts Hok).
  apply nodes_bounds in H; [| assumption]. unfold heap_first in *. cbn. lia.
Qed.

Lemma regions_above base ts o : Forall tile_ok ts -> o ∈ (regions base ts).*1 -> base <= o < base + total ts.
Proof.
  intros Hok H. apply list_elem_of_fmap in H as ([q t] & -> & H). apply regions_bounds in H; [| assumption]. cbn. lia.
Qed.

Lemma head_address_above base ts b : Forall tile_ok ts -> b <= base -> b <= JMEM_HEAP_END_OF_LIST -> b <= head_address (regions base ts).
Proof.
  intros Hok Hb Hend. destruct (regions base ts) as [|[q t] l] eqn:E; cbn; [assumption |].
  assert (Hq : q ∈ (regions base ts).*1) by (rewrite E; apply elem_of_cons; now left). apply regions_above in Hq; [lia | assumption].
Qed.

(** jmem_heap_find_prev delivers the last node in front of an address *)
Lemma find_prev_spec j n1 l2 bo :
  seg (memory j) heap_first (n1 ++ l2) JMEM_HEAP_END_OF_LIST -> (exists n1', n1 = (heap_first, 0) :: n1') ->
  (forall o, o ∈ n1.*1 -> o < bo) -> (forall o, o ∈ l2.*1 -> bo <= o) -> bo <= head_address l2 -> is_u32 bo ->
  jmem_heap_list_skip_p j ∈ (n1 ++ l2).*1 -> (length n1 <= list_fuel cfg)%nat ->
  exists ns p s, n1 = ns ++ [(p, s)] /\ jmem_heap_find_prev cfg bo j = DONE p j.
Proof.
  intros Hseg [n1' E1] Hlow Hhigh Hhead Hbo Hskip Hlen. unfold jmem_heap_find_prev. erewrite bind_done by reflexivity. cbv zeta. rewrite u32_small by assumption.
  destruct (Z.ltb_spec (jmem_heap_list_skip_p j) bo) as [Hlt|_].
  - rewrite fmap_app, elem_of_app in Hskip. destruct Hskip as [Hskip|Hskip]; [| apply Hhigh in Hskip; lia].
    apply list_elem_of_fmap in Hskip as ([p s] & Ep & Hin). cbn in Ep. subst p. apply list_elem_of_split in Hin as (a & b & Eab).
    rewrite Eab in Hseg, Hlow, Hlen. rewrite <- app_assoc in Hseg. apply seg_app in Hseg as (mid & _ & Hseg). cbn [app] in Hseg.
    assert (mid = jmem_heap_list_skip_p j) as -> by (now destruct Hseg as [-> _]).
    destruct (find_prev_loop_spec j bo l2 (list_fuel cfg) b _ _ Hseg) as (ns & q & t & Eq & Hd); [| assumption | |].
    + intros o Ho. apply Hlow. rewrite fmap_app, elem_of_app. right. apply elem_of_cons. now right.
    + rewrite length_app in Hlen. cbn in Hlen. lia.
    + exists (a ++ ns), q, t. split; [| exact Hd]. rewrite Eab, Eq. now rewrite app_assoc.
  - subst n1. destruct (find_prev_loop_spec j bo l2 (list_fuel cfg) n1' heap_first 0 Hseg) as (ns & q & t & Eq & Hd); [| assumption | |].
    + intros o Ho. apply Hlow. apply elem_of_cons. now right.
    + cbn in Hlen. lia.
    + exists ns, q, t. now rewrite Eq.
Qed.

Lemma nodes_length pre post : Forall tile_ok (pre ++ post) -> total (pre ++ post) = JMEM_HEAP_AREA_SIZE cfg -> (length (nodes pre) <= list_fuel cfg)%nat.
Proof.
  intros Hok Htot. apply Forall_app in Hok as [Hpre Hpost]. pose proof (regions_length 0 pre Hpre). pose proof (total_nonneg post Hpost).
  rewrite total_app in Htot. pose proof area_range. unfold nodes, list_fuel, JMEM_ALIGNMENT in *. cbn [length]. lia.
Qed.

(** *** What the operations leave alone *)

(** The slots of the blocks of [ts] *)
Definition in_block (ts : list tile) (a : Z) : Prop := exists o n, blocks 0 ts !! o = Some n /\ o <= a < o + n.

(** The blocks of [ts] keep their contents, and the cell allocator its roots *)
Definition keeps (ts : list tile) (j j' : jmem_context) : Prop :=
  (forall a, in_block ts a -> memory j' !! a = memory j !! a) /\ cell_pages j' = cell_pages j /\ free_cells j' = free_cells j
  /\ engine j' = engine j.

Lemma keeps_trans ts j1 j2 j3 : keeps ts j1 j2 -> keeps ts j2 j3 -> keeps ts j1 j3.
Proof.
  intros (H1 & E1 & E1' & E1'') (H2 & E2 & E2' & E2''). unfold keeps; splits; [| congruence | congruence | congruence]. intros a Ha. rewrite H2 by assumption. now apply H1.
Qed.

Lemma blocks_app base ts1 ts2 o n : Forall tile_ok ts1 -> Forall tile_ok ts2 ->
  blocks base (ts1 ++ ts2) !! o = Some n <-> blocks base ts1 !! o = Some n \/ blocks (base + total ts1) ts2 !! o = Some n.
Proof.
  intros H1 H2. revert base. induction H1 as [|t ts1 [Ht _] Hts IH]; intros base; cbn.
  - rewrite lookup_empty, Z.add_0_r. split; [tauto | intros [H|H]; [discriminate | exact H]].
  - destruct t as [k|k]; cbn in *; [rewrite IH, Z.add_assoc; tauto |]. rewrite !lookup_insert_Some, IH, Z.add_assoc. split; [tauto |].
    intros [H|H]; [tauto |]. right. split; [| tauto]. intros <-. apply blocks_bounds in H; [| assumption].
    pose proof (total_nonneg ts1 Hts). lia.
Qed.

Lemma blocks_release pre n post : Forall tile_ok (pre ++ USED n :: post) ->
  blocks 0 (pre ++ FREE n :: post) = delete (total pre) (blocks 0 (pre ++ USED n :: post)).
Proof.
  intros Hok. apply Forall_app in Hok as [Hpre Hpost]. pose proof Hpost as Hpost'. apply Forall_cons in Hpost' as [Hn Hpost'].
  assert (Hfree : Forall tile_ok (FREE n :: post)) by now constructor.
  apply map_eq. intros o. apply option_eq. intros k. rewrite lookup_delete_Some, !blocks_app by assumption. cbn [blocks]. rewrite lookup_insert_Some, Z.add_0_l.
  destruct Hn as [Hn _]. cbn in Hn. split; [intros [H|H] | intros [Hne [H|[[E _]|[_ H]]]]]; try tauto.
  - split; [| tauto]. intros <-. apply blocks_bounds in H; [lia | assumption].
  - split; [| right; right; split; [| assumption]]; intros <-; (apply blocks_bounds in H; [lia | assumption]).
Qed.

(** No slot of a block is a header of the list *)
Lemma node_not_in_block ts o : Forall tile_ok ts -> o ∈ (nodes ts).*1 -> ~ in_block ts o.
Proof.
  intros Hok Ho (b & n & Hb & Hin). apply list_elem_of_fmap in Ho as ([q t] & -> & H). cbn in Hin.
  apply elem_of_cons in H as [H|H].
  { injection H as -> ->. apply blocks_bounds in Hb; [| assumption]. unfold heap_first in *. lia. }
  clear - Hok Hb Hin H. revert Hb Hin H. generalize 0. induction Hok as [|t' ts [Ht _] Hts IH]; intros base Hb Hin H; cbn in *; [now rewrite elem_of_nil in H |].
  destruct t' as [k|k]; cbn in *.
  - apply elem_of_cons in H as [H|H]; [| now apply (IH (base + k))]. injection H as -> ->. apply blocks_bounds in Hb; [lia | assumption].
  - apply lookup_insert_Some in Hb as [[<- <-]|[_ Hb]]; [| now apply (IH (base + k))]. apply regions_bounds in H; [lia | assumption].
Qed.

(** *** Release *)

Lemma blocks_used base ts o n : Forall tile_ok ts -> blocks base ts !! o = Some n -> n <= used ts.
Proof.
  intros Hok. revert base. induction Hok as [|t ts [Ht _] Hts IH]; intros base; cbn; [now rewrite lookup_empty |].
  pose proof (used_bounds ts Hts). destruct t as [k|k]; cbn in *; [apply IH |]. intros H'. apply lookup_insert_Some in H' as [[_ <-]|[_ H']]; [lia |].
  specialize (IH _ H'). lia.
Qed.

Lemma list_used_range j ts : list_ok j ts -> 0 <= used ts < B32.
Proof.
  intros H. pose proof (used_bounds ts (list_tiles _ _ H)). pose proof area_range. rewrite (list_total _ _ H) in *.
  unfold JMEM_HEAP_END_OF_LIST in *. lia.
Qed.

Lemma reserve_range ts : Forall tile_ok ts -> (forall o n, reserved = Some (o, n) -> blocks 0 ts !! o = Some n) -> 0 <= reserve <= used ts.
Proof.
  intros Hok H. unfold reserve. pose proof (used_bounds ts Hok). destruct reserved as [[o n]|]; [| lia].
  specialize (H o n eq_refl). pose proof (blocks_used 0 ts o n Hok H). apply blocks_bounds in H; [lia | assumption].
Qed.

Lemma list_ok_account j ts allocated limit : list_ok j ts -> list_ok (with_account allocated limit j) ts.
Proof. intros []. now split. Qed.

(** A block may be seen as two adjacent ones *)
Lemma list_ok_split j pre n1 n2 post : (JMEM_ALIGNMENT | n1) -> 0 < n1 -> 0 < n2 ->
  list_ok j (pre ++ USED (n1 + n2) :: post) -> list_ok j ((pre ++ [USED n1]) ++ USED n2 :: post).
Proof.
  intros Hd H1 H2 H. assert (Hn : nodes ((pre ++ [USED n1]) ++ USED n2 :: post) = nodes (pre ++ USED (n1 + n2) :: post)).
  { rewrite <- app_assoc, !nodes_app. cbn [app regions]. now rewrite <- Z.add_assoc. }
  destruct H as [Hok Hsep Htot Hl Hs]. apply Forall_app in Hok as [Hpre Hpost]. apply Forall_cons in Hpost as [[_ Hd12] Hpost]. cbn in Hd12.
  apply separated_app_used in Hsep. split; rewrite ?Hn; try assumption; rewrite <- app_assoc; cbn [app].
  - apply Forall_app. split; [assumption |]. constructor; [now split | constructor; [| assumption]]. split; [exact H2 |]. cbn.
    replace n2 with (n1 + n2 - n1) by lia. now apply Z.divide_sub_r.
  - apply separated_app_used. cbn. tauto.
  - rewrite <- Htot, !total_app. cbn [total tile_size]. lia.
Qed.

Lemma list_ok_merge j pre n1 n2 post : list_ok j ((pre ++ [USED n1]) ++ USED n2 :: post) -> list_ok j (pre ++ USED (n1 + n2) :: post).
Proof.
  intros H. assert (Hn : nodes ((pre ++ [USED n1]) ++ USED n2 :: post) = nodes (pre ++ USED (n1 + n2) :: post)).
  { rewrite <- app_assoc, !nodes_app. cbn [app regions]. now rewrite <- Z.add_assoc. }
  destruct H as [Hok Hsep Htot Hl Hs]. rewrite Hn in *. rewrite <- app_assoc in *. cbn [app] in *.
  apply Forall_app in Hok as [Hpre Hpost]. apply Forall_cons in Hpost as [[H1 Hd1] Hpost]. apply Forall_cons in Hpost as [[H2 Hd2] Hpost]. cbn in H1, H2.
  apply separated_app_used in Hsep. split; try assumption.
  - apply Forall_app. split; [assumption |]. constructor; [| assumption]. split; [cbn; lia | cbn; now apply Z.divide_add_r].
  - apply separated_app_used. cbn in Hsep. tauto.
  - rewrite <- Htot, !total_app. cbn [total tile_size]. lia.
Qed.

(** What the tiles around a block say about the nodes of the list *)
Record around (pre : list tile) (n : Z) (post : list tile) (ns : list (Z * Z)) (p s : Z) : Prop := {
  around_nodes : nodes pre = ns ++ [(p, s)];
  around_prev : p < total pre /\ heap_first <= p /\ 0 <= s /\ p + s <= total pre /\ (s = 0 <-> p = heap_first);
  around_p_ns : p ∉ ns.*1;
  around_p_post : p ∉ (regions (total pre + n) post).*1;
  around_ns : forall a, a ∈ ns.*1 -> a < total pre;
  around_post : forall a, a ∈ (regions (total pre + n) post).*1 -> total pre + n <= a
}.

Lemma find_prev_tiles j pre rest : list_ok j (pre ++ rest) -> exists ns p s, nodes pre = ns ++ [(p, s)] /\ jmem_heap_find_prev cfg (total pre) j = DONE p j.
Proof.
  intros H. pose proof (list_tiles _ _ H) as Hok. pose proof (list_total _ _ H) as Htot. pose proof area_range as Harea.
  pose proof (nodes_length pre rest Hok Htot) as Hlen. pose proof (list_nodes _ _ H) as Hseg. pose proof (list_skip _ _ H) as Hskip.
  rewrite nodes_app in Hseg, Hskip. apply Forall_app in Hok as [Hpre Hpost]. rewrite total_app in Htot.
  pose proof (total_nonneg pre Hpre). pose proof (total_nonneg rest Hpost). unfold JMEM_HEAP_END_OF_LIST in Harea.
  apply (find_prev_spec j (nodes pre) (regions (total pre) rest) (total pre)); try assumption.
  - now exists (regions 0 pre).
  - intros o Ho. now apply (nodes_below pre o Hpre).
  - intros o Ho. now apply regions_above in Ho.
  - apply head_address_above; [assumption | lia | unfold JMEM_HEAP_END_OF_LIST; lia].
  - unfold is_u32. lia.
Qed.

Lemma list_around j pre n post : list_ok j (pre ++ USED n :: post) -> exists ns p s, around pre n post ns p s
  /\ seg (memory j) heap_first (ns ++ (p, s) :: regions (total pre + n) post) JMEM_HEAP_END_OF_LIST
  /\ jmem_heap_find_prev cfg (total pre) j = DONE p j.
Proof.
  intros H. pose proof (list_tiles _ _ H) as Hok. pose proof (list_total _ _ H) as Htot. pose proof area_range as Harea.
  pose proof (nodes_NoDup _ Hok) as Hnd. pose proof (list_nodes _ _ H) as Hseg. rewrite nodes_app in Hseg, Hnd. cbn [regions] in Hseg, Hnd.
  apply Forall_app in Hok as [Hpre Hpost]. apply Forall_cons in Hpost as [[Hn _] Hpost]. cbn [tile_size] in Hn.
  rewrite total_app in Htot. cbn [total tile_size] in Htot. pose proof (total_nonneg pre Hpre). pose proof (total_nonneg post Hpost).
  set (l2 := regions (total pre + n) post) in *. unfold JMEM_HEAP_END_OF_LIST in Harea.
  assert (Hl2 : forall o, o ∈ l2.*1 -> total pre + n <= o) by (intros o Ho; apply regions_above in Ho; [lia | assumption]).
  assert (Hlow : forall o, o ∈ (nodes pre).*1 -> o < total pre) by (intros o Ho; now apply (nodes_below pre o Hpre)).
  destruct (find_prev_tiles j pre (USED n :: post) H) as (ns & p & s & En & Hfind).
  assert (Hps : (p, s) ∈ nodes pre) by (rewrite En; apply elem_of_app; right; now apply list_elem_of_singleton).
  apply nodes_bounds in Hps; [| assumption]. rewrite En, <- app_assoc in Hseg. rewrite En, !fmap_app, <- app_assoc in Hnd.
  apply NoDup_app in Hnd as (_ & Hns & Hnd). apply NoDup_cons in Hnd as [Hpl _]. rewrite En in Hlow.
  exists ns, p, s. split; [| now split]. split; try assumption; unfold heap_first in *.
  - lia.
  - intros Hin. apply (Hns p Hin), elem_of_cons. now left.
  - intros a Ha. apply Hlow. rewrite fmap_app, elem_of_app. now left.
Qed.

(** jmem_heap_insert_block releases a block and joins it with its neighbours *)
Lemma insert_tiles j pre n post ns p s : list_ok j (pre ++ USED n :: post) -> around pre n post ns p s ->
  exists m', jmem_heap_insert_block (total pre) p n j = DONE tt (with_list m' p j)
    /\ list_ok (with_list m' p j) (coalesce (pre ++ FREE n :: post)) /\ (forall a, in_block (pre ++ FREE n :: post) a -> m' !! a = memory j !! a).
Proof.
  intros H [En Hp Hns Hpl Hlow Hhigh]. pose proof (list_tiles _ _ H) as Hok. pose proof (list_total _ _ H) as Htot. pose proof (list_separated _ _ H) as Hsep.
  pose proof area_range as Harea. pose proof (list_nodes _ _ H) as Hseg. rewrite nodes_app, En, <- app_assoc in Hseg. cbn [regions] in Hseg.
  apply separated_app_used in Hsep as [Spre Spost]. apply Forall_app in Hok as [Hpre Hpost]. apply Forall_cons in Hpost as [Hn Hpost].
  rewrite total_app in Htot. cbn [total tile_size] in Htot. pose proof (total_nonneg pre Hpre). pose proof (total_nonneg post Hpost).
  unfold JMEM_HEAP_END_OF_LIST in Harea. pose proof Hn as [Hpos _]. cbn [tile_size] in Hpos. unfold heap_first in Hp.
  destruct (insert_block_spec j ns p s (total pre) n _ Hseg) as (m' & Hins & Hseg' & Hframe); try (unfold JMEM_HEAP_END_OF_LIST; lia); try assumption.
  { intros Hin. apply Hlow in Hin. lia. } { intros Hin. apply Hhigh in Hin. lia. }
  { intros q t Hqt. apply regions_bounds in Hqt; [| assumption]. unfold JMEM_HEAP_END_OF_LIST. lia. }
  exists m'. split; [exact Hins |]. pose proof (nodes_release pre n post ns p s Hpre Hpost Spre Spost En) as Hrel.
  assert (Hok2 : Forall tile_ok (pre ++ FREE n :: post)) by (apply Forall_app; split; [assumption | now constructor]). split.
  - split; cbn [memory jmem_heap_list_skip_p with_list]; rewrite ?Hrel; try assumption.
    + now apply coalesce_ok.
    + apply coalesce_separated.
    + now rewrite total_coalesce, total_app.
    + rewrite fmap_app, elem_of_app. right. unfold link, absorb.
      destruct (p + s =? total pre); [| apply elem_of_cons; now left].
      destruct (regions _ _) as [|[q t] l]; [| destruct (_ =? q)]; apply elem_of_cons; now left.
  - intros a Hin. apply Hframe; intros ->; revert Hin; apply node_not_in_block; try assumption; rewrite nodes_app, fmap_app, elem_of_app.
    + left. rewrite En, fmap_app, elem_of_app. right. now apply list_elem_of_singleton.
    + right. apply elem_of_cons. now left.
Qed.

Lemma with_account_twice a l a' l' j : with_account a l (with_account a' l' j) = with_account a l j.
Proof. reflexivity. Qed.

Lemma free_region_spec j pre n post size : heap_ok j (pre ++ USED n :: post) -> jmem_align size = n -> (forall k, reserved <> Some (total pre, k)) ->
  exists j', free_region cfg (total pre) size j = DONE tt j' /\ heap_ok j' (coalesce (pre ++ FREE n :: post)) /\ keeps (pre ++ FREE n :: post) j j'.
Proof.
  intros [H Hacc Hres] Ha Hfree. destruct (list_around _ _ _ _ H) as (ns & p & s & Har & _ & Hfind).
  destruct (insert_tiles _ _ _ _ _ _ _ H Har) as (m' & Hins & Hl & Hk). pose proof (list_used_range _ _ H) as Hu.
  assert (Hused : used (coalesce (pre ++ FREE n :: post)) = used (pre ++ USED n :: post) - n).
  { rewrite used_coalesce, !used_app. cbn [used]. lia. }
  assert (Hres' : forall o k, reserved = Some (o, k) -> blocks 0 (coalesce (pre ++ FREE n :: post)) !! o = Some k).
  { intros o k E. pose proof (Hres o k E) as Hb. assert (o <> total pre) by (intros ->; now apply (Hfree k)).
    rewrite blocks_coalesce, blocks_release, lookup_delete_ne by (try apply H; congruence). assumption. }
  pose proof (reserve_range _ (list_tiles _ _ Hl) Hres') as Hr. rewrite Hused in Hr.
  assert (Hn : 0 <= n) by (pose proof (list_tiles _ _ H) as Hok; apply Forall_app in Hok as [_ Hok]; apply Forall_cons in Hok as [[Hn _] _]; cbn in Hn; lia).
  destruct (account_release_spec (with_list m' p j) _ n Hacc Hn Hr ltac:(lia)) as (j' & Hd & Hacc' & Ej).
  unfold free_region. rewrite Ha. erewrite bind_done by exact Hfind. erewrite bind_done by exact Hins. exists j'. split; [exact Hd |].
  split; [split; [rewrite Ej; now apply list_ok_account | now rewrite Hused | exact Hres'] |].
  rewrite Ej. unfold keeps. splits; [exact Hk | reflexivity | reflexivity | reflexivity].
Qed.

(** *** Allocation *)

Lemma first_fit_some n ts pre s post : first_fit n ts = Some (pre, s, post) ->
  ts = pre ++ FREE s :: post /\ n <= s /\ (forall base o m, (o, m) ∈ regions base pre -> m < n).
Proof.
  revert pre. induction ts as [|[m|m] ts IH]; intros pre; cbn; [discriminate | |].
  - destruct (Z.leb_spec n m).
    + intros E. injection E as <- <- <-. splits; [reflexivity | assumption | intros base o k Hk; now rewrite elem_of_nil in Hk].
    + destruct (first_fit n ts) as [[[pre' s'] post']|]; [| discriminate]. intros E. injection E as <- <- <-.
      destruct (IH _ eq_refl) as (-> & Hs & Hp). splits; [reflexivity | assumption |]. intros base o k Hk.
      apply elem_of_cons in Hk as [Hk|Hk]; [injection Hk as -> ->; assumption | eapply Hp, Hk].
  - destruct (first_fit n ts) as [[[pre' s'] post']|]; [| discriminate]. intros E. injection E as <- <- <-.
    destruct (IH _ eq_refl) as (-> & Hs & Hp). splits; [reflexivity | assumption |]. intros base o k Hk. eapply Hp, Hk.
Qed.

Lemma first_fit_none n ts base o m : first_fit n ts = None -> (o, m) ∈ regions base ts -> m < n.
Proof.
  revert base. induction ts as [|[k|k] ts IH]; intros base; cbn; [intros _ H; now rewrite elem_of_nil in H | |].
  - destruct (Z.leb_spec n k); [discriminate |]. destruct (first_fit n ts) as [[[? ?] ?]|]; [discriminate |]. intros _ Hk.
    apply elem_of_cons in Hk as [Hk|Hk]; [injection Hk as -> ->; assumption | now apply (IH (base + k))].
  - destruct (first_fit n ts) as [[[? ?] ?]|]; [discriminate |]. intros _ Hk. now apply (IH (base + k)).
Qed.

(** The loop walks to the first region that is large enough *)
Lemma alloc_loop_spec j n tl fuel : forall l1 p sp,
  seg (memory j) p ((p, sp) :: l1 ++ tl) JMEM_HEAP_END_OF_LIST -> (forall o m, (o, m) ∈ l1 -> m < n) ->
  (forall o, o ∈ (l1 ++ tl).*1 -> o <> JMEM_HEAP_END_OF_LIST) -> (length l1 < fuel)%nat ->
  match tl with
  | [] => alloc_loop cfg fuel n (head_address (l1 ++ tl)) p j = DONE None j
  | (o, s) :: _ => n <= s -> exists ns q t next, (p, sp) :: l1 = ns ++ [(q, t)]
      /\ memory j !! o = Some (REGION (mk_region next s))
      /\ alloc_loop cfg fuel n (head_address (l1 ++ tl)) p j = take_region cfg n o q (mk_region next s) j
  end.
Proof.
  induction fuel as [|fuel IH]; intros l1 p sp Hseg Hsmall Hend Hf; [lia |]. destruct Hseg as (_ & next & Hp & Hseg).
  destruct l1 as [|[o m] l1]; cbn [app] in *.
  - destruct tl as [|[o s] tl]; [reflexivity |]. intros Hs. destruct Hseg as (-> & next0 & Ho & _). exists [], p, sp, next0.
    splits; [reflexivity | assumption |]. cbn [head_address alloc_loop]. rewrite (proj2 (Z.eqb_neq _ _)) by (apply Hend, elem_of_cons; now left).
    erewrite bind_done by (eapply read_region_done, Ho). cbn [region_size]. now rewrite (proj2 (Z.leb_le _ _)).
  - assert (next = o) as -> by (now destruct Hseg as [-> _]). pose proof Hseg as (_ & next' & Ho & Hrest). apply seg_head in Hrest.
    assert (Hstep : alloc_loop cfg (S fuel) n (head_address ((o, m) :: l1 ++ tl)) p j = alloc_loop cfg fuel n (head_address (l1 ++ tl)) o j).
    { cbn [head_address alloc_loop]. rewrite (proj2 (Z.eqb_neq _ _)) by (apply Hend, elem_of_cons; now left).
      erewrite bind_done by (eapply read_region_done, Ho). cbn [region_size next_offset]. rewrite (proj2 (Z.leb_gt _ _)) by (apply (Hsmall o), elem_of_cons; now left).
      now rewrite Hrest. }
    rewrite Hstep. specialize (IH l1 o m Hseg). destruct tl as [|[o' s] tl].
    + apply IH; [| | cbn in Hf; lia]; intros; [eapply Hsmall, elem_of_cons; right; eassumption | apply Hend, elem_of_cons; now right].
    + intros Hs. destruct IH as (ns & q & t & nx & E & Hq & Hd); try assumption.
      * intros; eapply Hsmall, elem_of_cons; right; eassumption.
      * intros; apply Hend, elem_of_cons; now right.
      * cbn in Hf; lia.
      * exists ((p, sp) :: ns), q, t, nx. rewrite E. now splits.
Qed.

Lemma free_tile_ok r post : Forall tile_ok post -> 0 <= r -> (JMEM_ALIGNMENT | r) -> Forall tile_ok (free_tile r post).
Proof. intros Hp Hr Hd. unfold free_tile. destruct (Z.eqb_spec r 0); [assumption | constructor; [split; cbn; [lia | assumption] | assumption]]. Qed.

Lemma total_free_tile r post : total (free_tile r post) = r + total post.
Proof. unfold free_tile. destruct (Z.eqb_spec r 0); cbn; lia. Qed.
Lemma used_free_tile r post : used (free_tile r post) = used post.
Proof. unfold free_tile. now destruct (r =? 0). Qed.
Lemma separated_free_tile s r post : separated (FREE s :: post) -> separated (free_tile r post).
Proof. unfold free_tile. destruct (r =? 0); [| tauto]. cbn. now destruct post as [|[]]. Qed.
Lemma blocks_free_tile base r post : blocks base (free_tile r post) = blocks (base + r) post.
Proof. unfold free_tile. destruct (Z.eqb_spec r 0) as [->|]; cbn; [now rewrite Z.add_0_r | reflexivity]. Qed.

(** An allocation adds one block *)
Lemma blocks_allocate pre s post n : Forall tile_ok pre -> Forall tile_ok (FREE s :: post) -> 0 < n <= s -> (JMEM_ALIGNMENT | n) ->
  blocks 0 (pre ++ USED n :: free_tile (s - n) post) = <[total pre := n]> (blocks 0 (pre ++ FREE s :: post))
  /\ blocks 0 (pre ++ FREE s :: post) !! total pre = None.
Proof.
  intros Hpre Hpost Hn Hd. pose proof Hpost as Hpost'. apply Forall_cons in Hpost' as [[Hs Hds] Hpost']. cbn in Hs, Hds.
  assert (Hr : Forall tile_ok (USED n :: free_tile (s - n) post)).
  { constructor; [split; [cbn; lia | assumption] |]. apply free_tile_ok; [assumption | lia | now apply Z.divide_sub_r]. }
  assert (Hnone : blocks 0 (pre ++ FREE s :: post) !! total pre = None).
  { destruct (blocks 0 (pre ++ FREE s :: post) !! total pre) as [k|] eqn:E; [| reflexivity]. apply blocks_app in E; [| assumption | assumption].
    destruct E as [E|E]; [apply blocks_bounds in E; [lia | assumption] |]. cbn in E. apply blocks_bounds in E; [lia | assumption]. }
  split; [| assumption]. apply map_eq. intros o. apply option_eq. intros k. rewrite blocks_app by assumption.
  rewrite lookup_insert_Some, blocks_app by assumption. cbn [blocks]. rewrite lookup_insert_Some, blocks_free_tile.
  replace (0 + total pre + n + (s - n)) with (0 + total pre + s) by lia. rewrite Z.add_0_l. split; [intros [H|[H|H]] | intros [H|[H1 [H|H]]]]; try tauto.
  right. split; [| now left]. intros <-. apply blocks_bounds in H; [lia | assumption].
Qed.

Lemma in_block_mono ts ts' a : (forall o n, blocks 0 ts !! o = Some n -> blocks 0 ts' !! o = Some n) -> in_block ts a -> in_block ts' a.
Proof. intros H (o & n & Hb & Ha). exists o, n. auto. Qed.

Lemma in_block_allocate pre s post n a : Forall tile_ok pre -> Forall tile_ok (FREE s :: post) -> 0 < n <= s -> (JMEM_ALIGNMENT | n) ->
  in_block (pre ++ FREE s :: post) a -> in_block (pre ++ USED n :: free_tile (s - n) post) a.
Proof.
  intros Hpre Hpost Hn Hd. apply in_block_mono. intros o k Hk. destruct (blocks_allocate pre s post n Hpre Hpost Hn Hd) as [-> Hnone].
  rewrite lookup_insert_ne; [assumption | congruence].
Qed.

Lemma tiles_allocate pre s post n : Forall tile_ok (pre ++ FREE s :: post) -> 0 < n <= s -> (JMEM_ALIGNMENT | n) ->
  Forall tile_ok (pre ++ USED n :: free_tile (s - n) post).
Proof.
  intros Hok Hn Hd. apply Forall_app in Hok as [Hpre Hpost]. apply Forall_cons in Hpost as [[Hs Hds] Hpost]. cbn in Hs, Hds.
  apply Forall_app. split; [assumption |]. constructor; [split; [cbn; lia | assumption] |].
  apply free_tile_ok; [assumption | lia | now apply Z.divide_sub_r].
Qed.

Lemma separated_allocate pre s post n r : separated (pre ++ FREE s :: post) -> separated (pre ++ USED n :: free_tile r post).
Proof. intros H. apply separated_app_used. apply separated_app in H as [Hp Hq]. split; [assumption | now apply (separated_free_tile s)]. Qed.

(** *** Taking the front of a region *)

(** The memory after the first [n] bytes of the region at [o], behind the node [q], are taken *)
Definition carve (m : gmap Z slot) (q t o n : Z) (region : jmem_heap_free_t) : gmap Z slot :=
  if region_size region =? n then <[q := REGION (mk_region (next_offset region) t)]> m
  else <[q := REGION (mk_region (o + n) t)]> (<[o + n := REGION (mk_region (next_offset region) (region_size region - n))]> m).

Lemma carve_seg m ns q t o s next l2 n :
  seg m heap_first (ns ++ (q, t) :: (o, s) :: l2) JMEM_HEAP_END_OF_LIST -> m !! o = Some (REGION (mk_region next s)) ->
  q ∉ ns.*1 -> q ∉ l2.*1 -> q < o -> o + n ∉ ns.*1 -> (s <> n -> o + n ∉ l2.*1) -> 0 < n ->
  seg (carve m q t o n (mk_region next s)) heap_first (ns ++ (q, t) :: (if s =? n then l2 else (o + n, s - n) :: l2)) JMEM_HEAP_END_OF_LIST.
Proof.
  intros Hseg Ho Hqns Hql Hqo Hons Hol Hn. apply seg_app in Hseg as (mid & Hns & -> & nq & Hq & -> & nx & Ho' & Hl2).
  assert (nx = next) as -> by congruence. apply seg_app. exists q. unfold carve. cbn [region_size next_offset].
  destruct (Z.eqb_spec s n) as [->|Hne].
  - split; [now apply seg_insert |]. split; [reflexivity |]. exists next. split; [apply lookup_insert_eq |]. now apply seg_insert.
  - split; [now apply seg_insert, seg_insert |]. split; [reflexivity |]. exists (o + n). split; [apply lookup_insert_eq |].
    split; [reflexivity |]. exists next. rewrite lookup_insert_ne, lookup_insert_eq by lia. split; [reflexivity |].
    specialize (Hol Hne). now apply seg_insert, seg_insert.
Qed.

(** The free region [s] between [pre] and [post], and the node in front of it *)
Lemma list_region j pre s post : list_ok j (pre ++ FREE s :: post) -> exists ns q t next, nodes pre = ns ++ [(q, t)]
  /\ memory j !! total pre = Some (REGION (mk_region next s)) /\ memory j !! q = Some (REGION (mk_region (total pre) t)) /\ 0 < s
  /\ 0 <= total pre /\ total pre + s < JMEM_HEAP_END_OF_LIST - 8 /\ q < total pre /\ heap_first <= q.
Proof.
  intros H. pose proof (list_nodes _ _ H) as Hseg. pose proof (list_tiles _ _ H) as Hok. pose proof (list_total _ _ H) as Htot. pose proof area_range.
  apply Forall_app in Hok as [Hpre Hpost]. apply Forall_cons in Hpost as [[Hs _] Hpost]. cbn [tile_size] in Hs.
  rewrite total_app in Htot. cbn [total tile_size] in Htot. pose proof (total_nonneg pre Hpre). pose proof (total_nonneg post Hpost).
  rewrite nodes_app in Hseg. cbn [regions] in Hseg. destruct (nodes pre) as [|[q t] ns _] eqn:E using rev_ind; [discriminate |].
  assert (Hq : q < total pre /\ heap_first <= q).
  { apply (nodes_below pre q Hpre). rewrite E, fmap_app, elem_of_app. right. now apply list_elem_of_singleton. }
  rewrite <- app_assoc in Hseg. apply seg_app in Hseg as (mid & _ & -> & nq & Hmq & -> & next & Ho & _).
  exists ns, q, t, next. splits; try assumption; try reflexivity; lia.
Qed.

Lemma carve_tiles j pre s post n ns q t next : list_ok j (pre ++ FREE s :: post) -> 0 < n <= s -> (JMEM_ALIGNMENT | n) ->
  nodes pre = ns ++ [(q, t)] -> memory j !! total pre = Some (REGION (mk_region next s)) ->
  let m' := carve (memory j) q t (total pre) n (mk_region next s) in
  list_ok (with_list m' q j) (pre ++ USED n :: free_tile (s - n) post)
  /\ forall a, in_block (pre ++ USED n :: free_tile (s - n) post) a -> m' !! a = memory j !! a.
Proof.
  intros H Hn Hd En Ho m'. pose proof (list_nodes _ _ H) as Hseg. pose proof (list_tiles _ _ H) as Hok. pose proof (nodes_NoDup _ Hok) as Hnd.
  pose proof (tiles_allocate pre s post n Hok Hn Hd) as Hok2. pose proof Hok as Hok'. apply Forall_app in Hok' as [Hpre Hpost].
  apply Forall_cons in Hpost as [_ Hpost]. rewrite nodes_app in Hnd, Hseg. cbn [regions] in Hnd, Hseg. set (l2 := regions (total pre + s) post) in *.
  assert (Hnodes : nodes (pre ++ USED n :: free_tile (s - n) post) = ns ++ (q, t) :: (if s =? n then l2 else (total pre + n, s - n) :: l2)).
  { rewrite nodes_allocate, En, <- app_assoc by lia. reflexivity. }
  rewrite En, <- app_assoc in Hseg. cbn [app] in Hseg. rewrite En, !fmap_app, <- app_assoc in Hnd.
  apply NoDup_app in Hnd as (_ & Hns & Hnd). apply NoDup_cons in Hnd as [Hql _].
  assert (Hlow : forall a, a ∈ (nodes pre).*1 -> a < total pre) by (intros a Hin; now apply (nodes_below pre a Hpre)).
  rewrite En, fmap_app in Hlow. assert (Hq : q < total pre) by (apply Hlow, elem_of_app; right; now apply list_elem_of_singleton).
  assert (Hl2 : forall a, a ∈ l2.*1 -> total pre + s <= a) by (intros a Ha; apply regions_above in Ha; [lia | assumption]).
  split; [split |].
  - exact Hok2.
  - eapply separated_allocate, (list_separated _ _ H).
  - rewrite <- (list_total _ _ H), !total_app. cbn [total tile_size]. rewrite total_free_tile. lia.
  - rewrite Hnodes. apply carve_seg; try assumption; try lia.
    + intros Hin. apply (Hns q Hin), elem_of_cons. now left.
    + intros Hin. apply Hql, elem_of_cons. now right.
    + intros Hin. specialize (Hlow (total pre + n) ltac:(apply elem_of_app; now left)). lia.
    + intros Hne Hin. apply Hl2 in Hin. lia.
  - rewrite Hnodes, fmap_app, elem_of_app. right. apply elem_of_cons. now left.
  - intros a Ha. assert (Hno : a ∉ (nodes (pre ++ USED n :: free_tile (s - n) post)).*1) by (intros Hin; now apply (node_not_in_block _ a Hok2)).
    rewrite Hnodes, fmap_app, fmap_cons, not_elem_of_app, not_elem_of_cons in Hno. cbn [fst] in Hno. destruct Hno as (_ & Hqa & Hno).
    unfold m', carve. cbn [region_size]. destruct (s =? n); [now apply lookup_insert_ne |].
    rewrite fmap_cons, not_elem_of_cons in Hno. cbn [fst] in Hno. destruct Hno as [Hno _].
    rewrite lookup_insert_ne by (intros E; now apply Hqa). apply lookup_insert_ne. intros E. now apply Hno.
Qed.

(** *** The outcome of an allocation *)

Lemma take_region_done j a q t o s next n : memory j !! q = Some (REGION (mk_region o t)) -> q < o -> 0 < n <= s -> 0 <= o -> o + s < B32 ->
  account_ok j a -> 0 <= reserve <= a -> a + n < B32 ->
  exists j', take_region cfg n o q (mk_region next s) j = DONE (Some o) j' /\ account_ok j' (a + n) /\ limit_after n j'
    /\ j' = with_account (jmem_heap_allocated_size j') (jmem_heap_limit j') (with_list (carve (memory j) q t o n (mk_region next s)) q j).
Proof.
  intros Hq Hqo Hn H0 Hos Hacc Hr Ha. set (m' := carve _ _ _ _ _ _).
  destruct (account_allocation_spec (with_list m' q j) a n Hacc Hr ltac:(lia) Ha) as (j' & Hd & Hacc' & Hlim & Ej). exists j'. splits; try assumption.
  unfold take_region. cbn [region_size next_offset].
  assert (Hfinish : (set_skip q;; account_allocation cfg n;; mret (Some o)) (with_list m' (jmem_heap_list_skip_p j) j) = DONE (Some o) j').
  { erewrite bind_done by reflexivity. change (with_list m' q (with_list m' (jmem_heap_list_skip_p j) j)) with (with_list m' q j). unfold with_list in Hd |- *. cbn in Hd |- *. now erewrite bind_done by exact Hd. }
  rewrite <- Hfinish. unfold m', carve. cbn [region_size next_offset]. destruct (Z.ltb_spec n s) as [Hlt|Hge].
  - rewrite (proj2 (Z.eqb_neq s n)) by lia. rewrite (u32_small n), (u32_small (s - n)), (u32_small (o + n)) by (unfold is_u32; lia).
    rewrite bind_assoc. erewrite bind_done by reflexivity.
    erewrite bind_done by (eapply set_next_done; cbn; rewrite lookup_insert_ne by lia; exact Hq). reflexivity.
  - rewrite (proj2 (Z.eqb_eq s n)) by lia. erewrite bind_done by (eapply set_next_done, Hq). reflexivity.
Qed.

Lemma blocks_kept_reserved ts ts' : (forall o n, blocks 0 ts !! o = Some n -> blocks 0 ts' !! o = Some n) ->
  (forall o n, reserved = Some (o, n) -> blocks 0 ts !! o = Some n) -> forall o n, reserved = Some (o, n) -> blocks 0 ts' !! o = Some n.
Proof. intros H1 H2 o n E. now apply H1, H2. Qed.

Lemma list_alloc_loop j ts n : list_ok j ts ->
  match first_fit n ts with
  | None => alloc_loop cfg (list_fuel cfg) n (head_address (regions 0 ts)) heap_first j = DONE None j
  | Some (pre, s, post) => exists ns q t next, nodes pre = ns ++ [(q, t)] /\ memory j !! total pre = Some (REGION (mk_region next s))
      /\ alloc_loop cfg (list_fuel cfg) n (head_address (regions 0 ts)) heap_first j = take_region cfg n (total pre) q (mk_region next s) j
  end.
Proof.
  intros H. pose proof (list_tiles _ _ H) as Hok. pose proof (list_total _ _ H) as Htot. pose proof (list_nodes _ _ H) as Hseg. pose proof area_range as Harea.
  assert (Hend : forall o, o ∈ (regions 0 ts).*1 -> o <> JMEM_HEAP_END_OF_LIST) by (intros o Ho; apply regions_above in Ho; [lia | assumption]).
  pose proof (nodes_length ts [] ltac:(now rewrite app_nil_r) ltac:(now rewrite app_nil_r)) as Hlen. unfold nodes in Hlen. cbn [length] in Hlen.
  destruct (first_fit n ts) as [[[pre s] post]|] eqn:E.
  - apply first_fit_some in E as (-> & Hs & Hsmall). rewrite regions_app, Z.add_0_l in *. cbn [regions] in *.
    rewrite nodes_app in Hseg. cbn [regions] in Hseg.
    destruct (alloc_loop_spec j n ((total pre, s) :: regions (total pre + s) post) (list_fuel cfg) (regions 0 pre) heap_first 0) as (ns & q & t & next & En & Ho & Hd); try assumption.
    { apply Hsmall. } { rewrite length_app in Hlen. lia. } now exists ns, q, t, next.
  - pose proof (alloc_loop_spec j n [] (list_fuel cfg) (regions 0 ts) heap_first 0) as Hloop. rewrite app_nil_r in Hloop. apply Hloop; try assumption.
    intros o m. now apply first_fit_none.
Qed.

Lemma alloc_region_spec j ts n : heap_ok j ts -> JMEM_ALIGNMENT < n -> (JMEM_ALIGNMENT | n) ->
  match first_fit n ts with
  | None => alloc_region cfg n j = DONE None j
  | Some (pre, s, post) => exists j', alloc_region cfg n j = DONE (Some (total pre)) j'
      /\ heap_ok j' (pre ++ USED n :: free_tile (s - n) post) /\ keeps ts j j' /\ limit_after n j'
  end.
Proof.
  intros [H Hacc Hres] Hn Hd. pose proof (list_nodes _ _ H) as Hseg. pose proof (list_tiles _ _ H) as Hok. unfold JMEM_ALIGNMENT in Hn.
  assert (Hstart : memory j !! heap_first = Some (REGION (mk_region (head_address (regions 0 ts)) 0))).
  { destruct Hseg as (_ & nx & Hm & Hs). apply seg_head in Hs. now rewrite <- Hs. }
  assert (Hdo : alloc_region cfg n j = alloc_loop cfg (list_fuel cfg) n (head_address (regions 0 ts)) heap_first j).
  { unfold alloc_region. erewrite bind_done by (eapply read_region_done, Hstart). unfold JMEM_ALIGNMENT. now rewrite (proj2 (Z.eqb_neq n 8)) by lia. }
  rewrite Hdo. pose proof (list_alloc_loop j ts n H) as Hloop. destruct (first_fit n ts) as [[[pre s] post]|] eqn:E; [| exact Hloop].
  destruct Hloop as (ns & q & t & next & En & Ho & ->). apply first_fit_some in E as (-> & Hs & _).
  destruct (list_region _ _ _ _ H) as (ns' & q' & t' & next' & En' & _ & Hq & Hs0 & H0 & Hend & Hqo & _).
  rewrite En in En'. apply app_inj_tail in En' as [<- En']. injection En' as <- <-. pose proof (reserve_range _ Hok Hres) as Hr.
  destruct (carve_tiles j pre s post n ns q t next H ltac:(lia) Hd En Ho) as [Hl Hk]. cbv zeta in Hl, Hk.
  assert (Hu : used (pre ++ USED n :: free_tile (s - n) post) = used (pre ++ FREE s :: post) + n) by (rewrite !used_app; cbn [used]; rewrite used_free_tile; lia).
  pose proof (list_used_range _ _ Hl) as Hur. unfold JMEM_HEAP_END_OF_LIST in Hend.
  destruct (take_region_done j (used (pre ++ FREE s :: post)) q t (total pre) s next n Hq Hqo) as (j' & Hdone & Hacc' & Hlim & Ej); try assumption; try lia.
  exists j'. split; [exact Hdone |]. apply Forall_app in Hok as [Hpre Hpost].
  destruct (blocks_allocate pre s post n Hpre Hpost ltac:(lia) Hd) as [Hb Hnone].
  split; [split; [rewrite Ej; now apply list_ok_account | now rewrite Hu |] | split; [| exact Hlim]].
  - eapply blocks_kept_reserved; [| exact Hres]. intros o k Hk'. rewrite Hb, lookup_insert_ne by congruence. exact Hk'.
  - rewrite Ej. unfold keeps. splits; [| reflexivity | reflexivity | reflexivity]. intros a Ha. apply Hk. apply in_block_allocate; try assumption. lia.
Qed.
End Correct.
