(* ===== verification/JmemPointers.v ===== *)
(** * Compressed and tagged pointers: src/jjs-core/jmem/jmem-allocator.c and jmem.h

    A pointer into the heap is stored as its distance from the start of the heap
    in units of the alignment.  Addresses are offsets from the heap area, in
    front of which lies the first node of the free list, so that no block has
    the compressed pointer 0. *)
From Stdlib Require Import ZArith Lia Bool.
From S2P Require Import Prelude JmemHeap.
#[local] Open Scope Z_scope.

Definition JMEM_ALIGNMENT_LOG : Z := 3.
Definition JMEM_CP_NULL : Z := 0.
Definition JMEM_TAG_MASK : Z := 7.
Definition JMEM_TAG_SHIFT : Z := 3.

(** [cpointer_bits] is 16, or 32 with JJS_CPOINTER_32_BIT *)
Definition jmem_compress_pointer (cpointer_bits pointer_p : Z) : Z :=
  Z.shiftr (u64 (pointer_p - heap_first)) JMEM_ALIGNMENT_LOG mod 2 ^ cpointer_bits.
Definition jmem_decompress_pointer (compressed_pointer : Z) : Z :=
  u64 (Z.shiftl compressed_pointer JMEM_ALIGNMENT_LOG) + heap_first.

Definition JMEM_CP_SET_NON_NULL_POINTER_TAG (cpointer_bits pointer tag : Z) : Z :=
  u32 (Z.lor (u32 (Z.shiftl (jmem_compress_pointer cpointer_bits pointer) JMEM_TAG_SHIFT)) tag).
Definition JMEM_CP_GET_NON_NULL_POINTER_FROM_POINTER_TAG (cp_value : Z) : Z :=
  jmem_decompress_pointer (Z.shiftr (Z.land cp_value (Z.lxor JMEM_TAG_MASK 4294967295)) JMEM_TAG_SHIFT).
Definition JMEM_CP_GET_POINTER_TAG_BITS (cp_value : Z) : Z := Z.land cp_value 7.

Lemma lor_tag q tag : 0 <= q -> 0 <= tag < 8 -> Z.lor (8 * q) tag = 8 * q + tag.
Proof.
  intros Hq Ht. symmetry. rewrite <- Z.lxor_lor, Z.add_nocarry_lxor; [reflexivity | |];
    (change (8 * q) with (2 ^ 3 * q); rewrite <- (Z.mod_small tag (2 ^ 3)) by (cbn; lia); rewrite <- Z.land_ones, Z.mul_comm, <- Z.shiftl_mul_pow2 by lia;
     apply Z.bits_inj'; intros n Hn; rewrite Z.bits_0, !Z.land_spec; destruct (Z.lt_ge_cases n 3);
     [now rewrite Z.shiftl_spec_low by lia | now rewrite Z.ones_spec_high, !andb_false_r by lia]).
Qed.

Lemma compress_block bits q : bits = 16 \/ bits = 32 -> 0 <= q -> q + 1 < 2 ^ bits -> jmem_compress_pointer bits (8 * q) = q + 1.
Proof.
  intros Hb Hq Hlt. unfold jmem_compress_pointer, JMEM_ALIGNMENT_LOG, heap_first. rewrite Z.shiftr_div_pow2 by lia.
  assert (Hmax : q + 1 < B32) by (destruct Hb as [->| ->]; cbn in Hlt; lia). unfold u64. rewrite (Z.mod_small (8 * q - -8)) by lia.
  replace (8 * q - -8) with ((q + 1) * 2 ^ 3) by (cbn; lia). rewrite Z.div_mul by lia. apply Z.mod_small. lia.
Qed.

Lemma decompress_block q : 0 <= q < B32 -> jmem_decompress_pointer (q + 1) = 8 * q.
Proof.
  intros Hq. unfold jmem_decompress_pointer, JMEM_ALIGNMENT_LOG, heap_first, u64. rewrite Z.shiftl_mul_pow2 by lia.
  rewrite Z.mod_small by (cbn; lia). cbn. lia.
Qed.

Lemma tagged_block bits q tag : bits = 16 \/ bits = 32 -> 0 <= q -> q + 1 < 2 ^ bits -> 8 * q + 8 < B32 -> 0 <= tag < 8 ->
  JMEM_CP_SET_NON_NULL_POINTER_TAG bits (8 * q) tag = 8 * (q + 1) + tag.
Proof.
  intros Hb Hq Hlt Hmax Ht. unfold JMEM_CP_SET_NON_NULL_POINTER_TAG, JMEM_TAG_SHIFT. rewrite compress_block, Z.shiftl_mul_pow2 by (assumption || lia).
  replace ((q + 1) * 2 ^ 3) with (8 * (q + 1)) by (cbn; lia). rewrite (u32_small (8 * (q + 1))) by (unfold is_u32; lia). rewrite lor_tag by lia.
  apply u32_small. unfold is_u32. assert (Hd : 8 * (q + 1) < B32) by lia. Z.div_mod_to_equations. lia.
Qed.

Lemma tagged_pointer q tag : 0 <= q -> 8 * q + 8 < B32 -> 0 <= tag < 8 ->
  JMEM_CP_GET_NON_NULL_POINTER_FROM_POINTER_TAG (8 * (q + 1) + tag) = 8 * q /\ JMEM_CP_GET_POINTER_TAG_BITS (8 * (q + 1) + tag) = tag.
Proof.
  intros Hq Hmax Ht. unfold JMEM_CP_GET_NON_NULL_POINTER_FROM_POINTER_TAG, JMEM_CP_GET_POINTER_TAG_BITS, JMEM_TAG_SHIFT, JMEM_TAG_MASK. split.
  - rewrite Z.shiftr_land. change (Z.shiftr (Z.lxor 7 4294967295) 3) with (Z.ones 29). rewrite Z.land_ones, Z.shiftr_div_pow2 by lia.
    replace ((8 * (q + 1) + tag) / 2 ^ 3) with (q + 1) by (cbn; Z.div_mod_to_equations; lia). rewrite Z.mod_small by (cbn; lia).
    apply decompress_block. lia.
  - change 7 with (Z.ones 3). rewrite Z.land_ones by lia. cbn. Z.div_mod_to_equations. lia.
Qed.
