(* ===== verification/Jmem.v ===== *)
(** * The memory manager: src/jjs-core/jmem/jmem-heap.c and jmem-cellocator.c

    Requests of at most 32 bytes are served with cells, larger ones with regions
    of the heap (JmemHeap).  Cells come in pages, which are allocated from the
    heap when a cell is needed and there is none, and which are never given
    back; free cells are linked through their first word.  A request that
    cannot be served asks for a garbage collection with growing pressure.

    The collector is part of the engine above this component.  What the memory
    manager sees of it are the blocks it releases: the context records those
    that a collection would find unreachable, and a collection under low
    pressure takes place only when enough objects were created
    ([low_pressure_runs]). *)
From Stdlib Require Import ZArith Lia.
From stdpp Require Import base gmap list.
From S2P Require Import Prelude JmemHeap.
#[local] Open Scope Z_scope.

Definition JMEM_CELLOCATOR_PAGE_HEADER_SIZE : Z := 24.
Definition JMEM_CELLOCATOR_PAGE_SIZE (count : Z) : Z :=
  JMEM_CELLOCATOR_PAGE_HEADER_SIZE + u32 (JMEM_CELLOCATOR_CELL_SIZE * count).

Inductive jmem_pressure_t := JMEM_PRESSURE_NONE | JMEM_PRESSURE_LOW | JMEM_PRESSURE_HIGH | JMEM_PRESSURE_FULL.

Definition pressure_level (p : jmem_pressure_t) : Z :=
  match p with JMEM_PRESSURE_NONE => 0 | JMEM_PRESSURE_LOW => 1 | JMEM_PRESSURE_HIGH => 2 | JMEM_PRESSURE_FULL => 3 end.

(** pressure++ *)
Definition next_pressure (p : jmem_pressure_t) : jmem_pressure_t :=
  match p with JMEM_PRESSURE_NONE => JMEM_PRESSURE_LOW | JMEM_PRESSURE_LOW => JMEM_PRESSURE_HIGH | _ => JMEM_PRESSURE_FULL end.

Definition set_pages (p : option Z) : J unit := fun j =>
  DONE tt (mk_jmem (memory j) (jmem_heap_list_skip_p j) (jmem_heap_allocated_size j) (jmem_heap_limit j) p (free_cells j) (engine j)).
Definition set_free_cells (p : option Z) : J unit := fun j =>
  DONE tt (mk_jmem (memory j) (jmem_heap_list_skip_p j) (jmem_heap_allocated_size j) (jmem_heap_limit j) (cell_pages j) p (engine j)).
Definition set_engine (e : engine_blocks) : J unit := fun j =>
  DONE tt (mk_jmem (memory j) (jmem_heap_list_skip_p j) (jmem_heap_allocated_size j) (jmem_heap_limit j) (cell_pages j) (free_cells j) e).

Definition read_cell (p : Z) : J (option Z) := fun j =>
  match memory j !! p with Some (CELL next) => DONE next j | _ => FAULT end.
Definition read_page (p : Z) : J jmem_cellocator_page_t := fun j =>
  match memory j !! p with Some (PAGE page) => DONE page j | _ => FAULT end.
Definition write_slot (p : Z) (s : slot) : J unit := set_memory <[p := s]>.

(** jjs_fatal *)
Definition fatal {A} : J A := fun _ => FATAL.

(** memcpy and memmove, by slots: the slots of the first [size] bytes *)
Definition slots_of (size : Z) : nat := Z.to_nat ((size + 7) / 8).
Definition memmove (dst src size : Z) : J unit :=
  set_memory (fun m => foldr (fun k m' => partial_alter (fun _ => m !! (src + 8 * Z.of_nat k)) (dst + 8 * Z.of_nat k) m') m (seq 0 (slots_of size))).

(** ** The cell allocator *)

Definition jmem_cellocator_alloc : J (option Z) :=
  j ← get_context;
  match free_cells j with
  | Some cell_p => next ← read_cell cell_p; set_free_cells next;; mret (Some cell_p)
  | None => mret None
  end.

Definition jmem_cellocator_cell_free (chunk_p : Z) : J unit :=
  j ← get_context;
  write_slot chunk_p (CELL (free_cells j));;
  set_free_cells (Some chunk_p).

Fixpoint find_loop (fuel : nat) (iter_p : option Z) (chunk_p : Z) : J (option Z) :=
  match fuel with
  | O => fault
  | S fuel =>
      match iter_p with
      | None => mret None
      | Some p =>
          page ← read_page p;
          if (start_p page <=? chunk_p) && (chunk_p <=? end_p page) then mret (Some p)
          else find_loop fuel (next_p page) chunk_p
      end
  end.

(** The loop that links the cells of a new page *)
Fixpoint link_cells (fuel : nat) (iter_p last_p : Z) : J unit :=
  match fuel with
  | O => fault
  | S fuel =>
      if iter_p <=? last_p then
        jmem_cellocator_cell_free iter_p;;
        link_cells fuel (iter_p + JMEM_CELLOCATOR_CELL_SIZE) last_p
      else mret tt
  end.

Section Jmem.
Context (cfg : jmem_config).
(** ecma_gc_new_objects * gc_new_objects_fraction > ecma_gc_objects_number *)
Context (low_pressure_runs : jmem_context -> bool).

Definition jmem_cellocator_find (chunk_p : Z) : J (option Z) :=
  j ← get_context;
  find_loop (S (list_fuel cfg)) (cell_pages j) chunk_p.

Definition jmem_heap_free_block (ptr size : Z) : J unit :=
  page ← jmem_cellocator_find ptr;
  match page with
  | Some _ => jmem_cellocator_cell_free ptr
  | None => free_region cfg ptr size
  end.

(** ecma_gc_run, as far as the memory manager is concerned *)
Fixpoint free_all (l : list (Z * Z)) : J unit :=
  match l with
  | [] => mret tt
  | (ptr, size) :: l => jmem_heap_free_block ptr size;; free_all l
  end.
Definition ecma_gc_run : J unit :=
  j ← get_context;
  set_engine (mk_engine [] (hashmaps (engine j)));;
  free_all (unreachable (engine j)).

(** Free hashmaps of remaining objects *)
Definition free_hashmaps : J unit :=
  j ← get_context;
  set_engine (mk_engine (unreachable (engine j)) []);;
  free_all (hashmaps (engine j)).

Definition ecma_free_unused_memory (pressure : jmem_pressure_t) : J unit :=
  match pressure with
  | JMEM_PRESSURE_LOW => j ← get_context; if low_pressure_runs j then ecma_gc_run else mret tt
  | JMEM_PRESSURE_HIGH => ecma_gc_run;; free_hashmaps
  | JMEM_PRESSURE_FULL => fatal
  | JMEM_PRESSURE_NONE => fault
  end.

(** The loop of jmem_heap_gc_and_alloc_block; there are three increments *)
Fixpoint pressure_loop (fuel : nat) (alloc : J (option Z)) (pressure max_pressure : jmem_pressure_t) (data_space_p : option Z) : J (option Z) :=
  match data_space_p with
  | Some _ => mret data_space_p
  | None =>
      if pressure_level pressure <? pressure_level max_pressure then
        match fuel with
        | O => fault
        | S fuel =>
            let pressure := next_pressure pressure in
            ecma_free_unused_memory pressure;;
            data_space_p ← alloc;
            pressure_loop fuel alloc pressure max_pressure data_space_p
        end
      else mret None
  end.

Definition gc_and_alloc (alloc : Z -> J (option Z)) (size : Z) (max_pressure : jmem_pressure_t) : J (option Z) :=
  if size =? 0 then mret None
  else
    j ← get_context;
    pressure ← (if jmem_heap_limit j <=? u64 (jmem_heap_allocated_size j + size)
                then ecma_free_unused_memory JMEM_PRESSURE_LOW;; mret JMEM_PRESSURE_LOW
                else mret JMEM_PRESSURE_NONE);
    data_space_p ← alloc size;
    pressure_loop 3 (alloc size) pressure max_pressure data_space_p.

Definition add_page (alloc : Z -> J (option Z)) : J bool :=
  chunk ← gc_and_alloc alloc (JMEM_CELLOCATOR_PAGE_SIZE (vm_cell_count cfg)) JMEM_PRESSURE_HIGH;
  match chunk with
  | None => mret false
  | Some chunk_p =>
      j ← get_context;
      let start := chunk_p + JMEM_CELLOCATOR_PAGE_HEADER_SIZE in
      let last := start + u32 (JMEM_CELLOCATOR_CELL_SIZE * u32 (vm_cell_count cfg - 1)) in
      write_slot chunk_p (PAGE (mk_page start last (cell_pages j)));;
      link_cells (S (Z.to_nat (vm_cell_count cfg))) start last;;
      write_slot chunk_p (PAGE (mk_page start last (cell_pages j)));;
      set_pages (Some chunk_p);;
      mret true
  end.

(** jmem_heap_alloc.  It calls itself through jmem_cellocator_add_page, for a
    page, which is larger than a cell: [depth] 2 is enough. *)
Fixpoint heap_alloc (depth : nat) (size : Z) : J (option Z) :=
  match depth with
  | O => fault
  | S depth =>
      let required_size := jmem_align size in
      if required_size <=? JMEM_CELLOCATOR_CELL_SIZE then
        chunk_p ← jmem_cellocator_alloc;
        match chunk_p with
        | Some _ => mret chunk_p
        | None =>
            ecma_free_unused_memory JMEM_PRESSURE_LOW;;
            chunk_p ← jmem_cellocator_alloc;
            match chunk_p with
            | Some _ => mret chunk_p
            | None =>
                added ← add_page (heap_alloc depth);
                if added : bool then jmem_cellocator_alloc else mret None
            end
        end
      else alloc_region cfg required_size
  end.

Definition jmem_heap_alloc : Z -> J (option Z) := heap_alloc 2.

Definition jmem_heap_gc_and_alloc_block (size : Z) (max_pressure : jmem_pressure_t) : J (option Z) :=
  gc_and_alloc jmem_heap_alloc size max_pressure.
Definition jmem_heap_alloc_block (size : Z) : J (option Z) := jmem_heap_gc_and_alloc_block size JMEM_PRESSURE_FULL.
Definition jmem_heap_alloc_block_null_on_error (size : Z) : J (option Z) := jmem_heap_gc_and_alloc_block size JMEM_PRESSURE_HIGH.
Definition jmem_cellocator_add_page : J bool := add_page (heap_alloc 1).

(** ** Reallocation *)

(** The block is followed or preceded by a free region that is large enough:
    the new address of the block and the node in front of it *)
Definition try_extend (ptr old_size aligned_old_size required_size : Z) : J (option (Z * Z)) :=
  prev_p ← jmem_heap_find_prev cfg ptr;
  prev ← read_region prev_p;
  let next_p := next_offset prev in
  if ptr + aligned_old_size =? next_p then
    next ← read_region next_p;
    if required_size <=? region_size next then
      (if required_size =? region_size next then set_next prev_p (next_offset next)
       else
         let new_next_p := next_p + required_size in
         write_region new_next_p (mk_region (next_offset next) (u32 (region_size next - required_size)));;
         set_next prev_p (u32 new_next_p));;
      mret (Some (ptr, prev_p))
    else mret None
  else if prev_p + region_size prev =? ptr then
    if required_size <=? region_size prev then
      prev_p ← (if required_size =? region_size prev
                then prev_p' ← jmem_heap_find_prev cfg prev_p; set_next prev_p' (u32 next_p);; mret prev_p'
                else set_size prev_p (u32 (region_size prev - required_size));; mret prev_p);
      memmove (ptr - required_size) ptr old_size;;
      mret (Some (ptr - required_size, prev_p))
    else mret None
  else mret None.

Definition jmem_heap_realloc_block (ptr old_size new_size : Z) : J (option Z) :=
  let aligned_new_size := jmem_align new_size in
  let aligned_old_size := jmem_align old_size in
  page ← jmem_cellocator_find ptr;
  match page with
  | Some _ =>
      if aligned_new_size <=? JMEM_CELLOCATOR_CELL_SIZE then mret (Some ptr)
      else
        chunk_p ← jmem_heap_alloc_block aligned_new_size;
        match chunk_p with
        | Some chunk => memmove chunk ptr aligned_old_size;; jmem_cellocator_cell_free ptr;; mret chunk_p
        | None => mret None
        end
  | None =>
      if aligned_old_size =? aligned_new_size then mret (Some ptr)
      else if aligned_new_size <? aligned_old_size then
        if aligned_new_size <=? JMEM_CELLOCATOR_CELL_SIZE then
          new_buffer ← jmem_heap_alloc aligned_new_size;
          (match new_buffer with Some b => memmove b ptr aligned_new_size | None => mret tt end);;
          jmem_heap_free_block ptr aligned_old_size;;
          mret new_buffer
        else
          prev_p ← jmem_heap_find_prev cfg ptr;
          jmem_heap_insert_block (ptr + aligned_new_size) prev_p (aligned_old_size - aligned_new_size);;
          account_release cfg (aligned_old_size - aligned_new_size);;
          mret (Some ptr)
      else
        let required_size := aligned_new_size - aligned_old_size in
        j ← get_context;
        (if jmem_heap_limit j <=? u64 (jmem_heap_allocated_size j + required_size)
         then ecma_free_unused_memory JMEM_PRESSURE_LOW else mret tt);;
        extended ← try_extend ptr old_size aligned_old_size required_size;
        match extended with
        | Some (ret_block_p, prev_p) => set_skip prev_p;; account_allocation cfg required_size;; mret (Some ret_block_p)
        | None =>
            j ← get_context;
            set_allocated (u64 (jmem_heap_allocated_size j - aligned_old_size));;
            ret_block_p ← jmem_heap_alloc_block new_size;
            prev_p ← jmem_heap_find_prev cfg ptr;
            match ret_block_p with
            | Some b => memmove b ptr old_size
            | None => fault
            end;;
            jmem_heap_insert_block ptr prev_p aligned_old_size;;
            mret ret_block_p
        end
  end.

(** ** Start and end *)

(** jmem_heap_init, in the zeroed context *)
Definition jmem_heap_init : jmem_context :=
  let heap_area_size := JMEM_HEAP_AREA_SIZE cfg in
  mk_jmem (<[heap_first := REGION (mk_region 0 0)]> {[0 := REGION (mk_region JMEM_HEAP_END_OF_LIST heap_area_size)]})
    heap_first 0 (gc_limit cfg) None None (mk_engine [] []).

Fixpoint finalize_loop (fuel : nat) (iter_p : option Z) : J unit :=
  match fuel, iter_p with
  | _, None => mret tt
  | O, _ => fault
  | S fuel, Some p =>
      page ← read_page p;
      let next_p := next_p page in
      jmem_heap_free_block p (JMEM_CELLOCATOR_PAGE_SIZE (vm_cell_count cfg));;
      finalize_loop fuel next_p
  end.

Definition jmem_cellocator_finalize : J unit :=
  j ← get_context;
  finalize_loop (S (list_fuel cfg)) (cell_pages j).

Definition jmem_heap_finalize : J unit :=
  jmem_cellocator_finalize;;
  j ← get_context;
  if 0 <? jmem_heap_allocated_size j then fatal else mret tt.
End Jmem.

(** ** The state of the memory manager *)

Section Invariant.
Context (cfg : jmem_config) {reserved : option (Z * Z)}.

Definition page_size : Z := JMEM_CELLOCATOR_PAGE_HEADER_SIZE + JMEM_CELLOCATOR_CELL_SIZE * vm_cell_count cfg.

Record jmem_config_ok : Prop := {
  heap_config_ok : config_ok cfg;
  cell_count_range : 1 <= vm_cell_count cfg;
  page_size_range : page_size < B32
}.

(** The cells of a page *)
Definition cell_of (p c : Z) : Prop := exists k, 0 <= k < vm_cell_count cfg /\ c = p + JMEM_CELLOCATOR_PAGE_HEADER_SIZE + JMEM_CELLOCATOR_CELL_SIZE * k.
Definition in_cells (pages : list Z) (c : Z) : Prop := exists p, p ∈ pages /\ cell_of p c.

(** The pages, linked through their headers, and the free cells *)
Fixpoint page_chain (m : gmap Z slot) (start : option Z) (pages : list Z) : Prop :=
  match pages with
  | [] => start = None
  | p :: pages => start = Some p /\ exists next,
      m !! p = Some (PAGE (mk_page (p + JMEM_CELLOCATOR_PAGE_HEADER_SIZE)
                                   (p + JMEM_CELLOCATOR_PAGE_HEADER_SIZE + JMEM_CELLOCATOR_CELL_SIZE * (vm_cell_count cfg - 1)) next))
      /\ page_chain m next pages
  end.
Fixpoint cell_chain (m : gmap Z slot) (start : option Z) (cells : list Z) : Prop :=
  match cells with
  | [] => start = None
  | c :: cells => start = Some c /\ exists next, m !! c = Some (CELL next) /\ cell_chain m next cells
  end.

(** How an address the clients hold, with the size they asked for, is stored *)
Definition stored (ts : list tile) (pages fc : list Z) (o s : Z) : Prop :=
  0 < s <= jmem_align s /\
  ((jmem_align s <= JMEM_CELLOCATOR_CELL_SIZE /\ in_cells pages o /\ o ∉ fc)
   \/ (JMEM_CELLOCATOR_CELL_SIZE < jmem_align s /\ o ∉ pages /\ blocks 0 ts !! o = Some (jmem_align s))).

(** The bytes a block of size [s] occupies *)
Definition extent (s : Z) : Z := Z.max JMEM_CELLOCATOR_CELL_SIZE (jmem_align s).

(** The area has the tiles [ts], [pages] and the free cells [fc], and the
    clients hold exactly the blocks [live] *)
Record mem_rep (j : jmem_context) (ts : list tile) (pages fc : list Z) (live : gmap Z Z) : Prop := {
  rep_heap : heap_ok cfg reserved j ts;
  rep_pages : page_chain (memory j) (cell_pages j) pages;
  rep_pages_nodup : NoDup pages;
  rep_pages_blocks : forall p, p ∈ pages -> blocks 0 ts !! p = Some page_size;
  rep_cells : cell_chain (memory j) (free_cells j) fc;
  rep_cells_nodup : NoDup fc;
  rep_cells_in : forall c, c ∈ fc -> in_cells pages c;
  rep_live : forall o s, live !! o = Some s -> stored ts pages fc o s;
  rep_all_cells : forall c, in_cells pages c -> c ∈ fc \/ is_Some (live !! c);
  rep_all_blocks : forall o n, blocks 0 ts !! o = Some n -> o ∈ pages \/ is_Some (live !! o);
  rep_unreachable_nodup : NoDup (pending (engine j)).*1;
  rep_unreachable : forall o s, (o, s) ∈ pending (engine j) -> live !! o = Some s;
  rep_reserved : forall o n, reserved = Some (o, n) -> o ∉ (pending (engine j)).*1
}.

(** The contents of the blocks [live] are the same *)
Definition keeps_live (live : gmap Z Z) (j j' : jmem_context) : Prop :=
  forall o s a, live !! o = Some s -> o <= a < o + s -> memory j' !! a = memory j !! a.

Hypothesis Hcfg : jmem_config_ok.

Lemma page_size_eq : JMEM_CELLOCATOR_PAGE_SIZE (vm_cell_count cfg) = page_size.
Proof.
  pose proof (cell_count_range Hcfg). pose proof (page_size_range Hcfg) as Hp. unfold JMEM_CELLOCATOR_PAGE_SIZE, page_size in *.
  unfold JMEM_CELLOCATOR_PAGE_HEADER_SIZE, JMEM_CELLOCATOR_CELL_SIZE in *. rewrite u32_small; [reflexivity | unfold is_u32; lia].
Qed.

Lemma page_size_large : JMEM_CELLOCATOR_CELL_SIZE < page_size.
Proof. pose proof (cell_count_range Hcfg). unfold page_size, JMEM_CELLOCATOR_PAGE_HEADER_SIZE, JMEM_CELLOCATOR_CELL_SIZE. lia. Qed.

Lemma page_size_aligned : (JMEM_ALIGNMENT | page_size).
Proof. exists (3 + 4 * vm_cell_count cfg). unfold page_size, JMEM_CELLOCATOR_PAGE_HEADER_SIZE, JMEM_CELLOCATOR_CELL_SIZE, JMEM_ALIGNMENT. lia. Qed.

Lemma align_bounds s : 0 < s <= B64 - 8 -> s <= jmem_align s < s + 8 /\ (JMEM_ALIGNMENT | jmem_align s).
Proof.
  intros Hs. unfold jmem_align, JMEM_ALIGNMENT, u64. rewrite Z.mod_small by lia. split; [Z.div_mod_to_equations; lia | apply Z.divide_factor_r].
Qed.

Lemma align_multiple n : 0 <= n < B32 -> (JMEM_ALIGNMENT | n) -> jmem_align n = n.
Proof.
  intros Hn [k ->]. unfold jmem_align, JMEM_ALIGNMENT, u64 in *. rewrite Z.mod_small by lia. Z.div_mod_to_equations. lia.
Qed.

(** *** Blocks, pages and cells do not overlap *)

Lemma blocks_disjoint base ts o n o' n' : Forall tile_ok ts -> blocks base ts !! o = Some n -> blocks base ts !! o' = Some n' ->
  o <> o' -> o + n <= o' \/ o' + n' <= o.
Proof.
  intros Hok. revert base. induction Hok as [|t ts [Ht _] Hts IH]; intros base; cbn; [now rewrite lookup_empty |].
  destruct t as [k|k]; cbn in *; [apply IH |]. rewrite !lookup_insert_Some. intros [[<- <-]|[_ H1]] [[<- <-]|[_ H2]] Hne; [congruence | | |].
  - apply blocks_bounds in H2; [lia | assumption].
  - apply blocks_bounds in H1; [lia | assumption].
  - now apply (IH (base + k)).
Qed.

Lemma cell_in_page p c : cell_of p c -> p + JMEM_CELLOCATOR_PAGE_HEADER_SIZE <= c /\ c + JMEM_CELLOCATOR_CELL_SIZE <= p + page_size.
Proof. intros (k & Hk & ->). unfold page_size, JMEM_CELLOCATOR_CELL_SIZE. lia. Qed.

Context {j : jmem_context} {ts : list tile} {pages fc : list Z} {live : gmap Z Z}.
Hypothesis Hrep : mem_rep j ts pages fc live.

Lemma rep_tiles : Forall tile_ok ts.
Proof. exact (list_tiles _ _ _ (heap_list _ _ _ _ (rep_heap _ _ _ _ _ Hrep))). Qed.

Lemma align_extent s : jmem_align s <= extent s /\ JMEM_CELLOCATOR_CELL_SIZE <= extent s.
Proof. unfold extent. lia. Qed.

(** The page a cell belongs to *)
Lemma cell_page_unique p c q n : p ∈ pages -> cell_of p c -> blocks 0 ts !! q = Some n -> q <= c < q + n -> q = p.
Proof.
  intros Hp Hc Hq Hin. destruct (Z.eq_dec q p) as [|Hne]; [assumption | exfalso]. pose proof (rep_pages_blocks _ _ _ _ _ Hrep p Hp) as Hb.
  apply cell_in_page in Hc. unfold JMEM_CELLOCATOR_PAGE_HEADER_SIZE, JMEM_CELLOCATOR_CELL_SIZE in Hc.
  destruct (blocks_disjoint 0 ts q n p page_size rep_tiles Hq Hb Hne); lia.
Qed.

Lemma cells_apart c c' : in_cells pages c -> in_cells pages c' -> c <> c' -> c + JMEM_CELLOCATOR_CELL_SIZE <= c' \/ c' + JMEM_CELLOCATOR_CELL_SIZE <= c.
Proof.
  intros (p & Hp & Hc) (p' & Hp' & Hc') Hne. pose proof (rep_pages_blocks _ _ _ _ _ Hrep p Hp) as Hb. pose proof (rep_pages_blocks _ _ _ _ _ Hrep p' Hp') as Hb'.
  destruct (Z.eq_dec p p') as [<-|Hpp].
  - destruct Hc as (k & _ & ->), Hc' as (k' & _ & ->). unfold JMEM_CELLOCATOR_CELL_SIZE in *. assert (k <> k') by (intros ->; lia). lia.
  - apply cell_in_page in Hc, Hc'. unfold JMEM_CELLOCATOR_PAGE_HEADER_SIZE in *.
    destruct (blocks_disjoint 0 ts p _ p' _ rep_tiles Hb Hb' Hpp); lia.
Qed.

Lemma cell_not_block c : in_cells pages c -> blocks 0 ts !! c = None.
Proof.
  intros (p & Hp & Hc). destruct (blocks 0 ts !! c) as [n|] eqn:E; [exfalso | reflexivity]. pose proof (blocks_bounds 0 ts c n rep_tiles E).
  assert (c = p) by (apply (cell_page_unique p c c n Hp Hc E); lia). apply cell_in_page in Hc. unfold JMEM_CELLOCATOR_PAGE_HEADER_SIZE in Hc. lia.
Qed.

Lemma cell_not_page c : in_cells pages c -> c ∉ pages.
Proof. intros Hc Hp. pose proof (cell_not_block c Hc). rewrite (rep_pages_blocks _ _ _ _ _ Hrep c Hp) in *. discriminate. Qed.

Lemma cell_slot_in_block c a : in_cells pages c -> c <= a < c + JMEM_CELLOCATOR_CELL_SIZE -> in_block ts a.
Proof.
  intros (p & Hp & Hc) Ha. exists p, page_size. split; [now apply (rep_pages_blocks _ _ _ _ _ Hrep) |].
  apply cell_in_page in Hc. unfold JMEM_CELLOCATOR_PAGE_HEADER_SIZE in *. lia.
Qed.

Lemma page_in_block p : p ∈ pages -> in_block ts p.
Proof. intros Hp. exists p, page_size. split; [now apply (rep_pages_blocks _ _ _ _ _ Hrep) |]. pose proof page_size_large. unfold JMEM_CELLOCATOR_CELL_SIZE in *. lia. Qed.

Lemma live_slot_in_block o s a : live !! o = Some s -> o <= a < o + s -> in_block ts a.
Proof.
  intros Hl Ha. destruct (rep_live _ _ _ _ _ Hrep o s Hl) as (Hs & [(H1 & H2 & _)|(_ & _ & H)]).
  - apply (cell_slot_in_block o); [assumption | lia].
  - exists o, (jmem_align s). split; [assumption | lia].
Qed.

(** The blocks of the clients do not overlap *)
Lemma live_disjoint o s o' s' : live !! o = Some s -> live !! o' = Some s' -> o <> o' -> o + extent s <= o' \/ o' + extent s' <= o.
Proof.
  intros Hl Hl' Hne. destruct (rep_live _ _ _ _ _ Hrep o s Hl) as (Hs & C). destruct (rep_live _ _ _ _ _ Hrep o' s' Hl') as (Hs' & C').
  assert (Hcross : forall a b k, in_cells pages a -> blocks 0 ts !! b = Some k -> b ∉ pages -> a + JMEM_CELLOCATOR_CELL_SIZE <= b \/ b + k <= a).
  { intros a b k (p & Hp & Hc) Hb Hnot. pose proof (rep_pages_blocks _ _ _ _ _ Hrep p Hp) as Hpb. apply cell_in_page in Hc.
    assert (Hpn : p <> b) by (intros ->; contradiction). unfold JMEM_CELLOCATOR_PAGE_HEADER_SIZE in *.
    destruct (blocks_disjoint 0 ts p page_size b k rep_tiles Hpb Hb Hpn); [left | right]; lia. }
  unfold extent. destruct C as [(H1 & H2 & _)|(H1 & H2 & H3)], C' as [(H1' & H2' & _)|(H1' & H2' & H3')];
    rewrite ?(Z.max_l _ (jmem_align s)), ?(Z.max_l _ (jmem_align s')), ?(Z.max_r _ (jmem_align s)), ?(Z.max_r _ (jmem_align s')) by lia.
  - exact (cells_apart o o' H2 H2' Hne).
  - exact (Hcross o o' _ H2 H3' H2').
  - destruct (Hcross o' o _ H2' H3 H2); tauto.
  - exact (blocks_disjoint 0 ts o _ o' _ rep_tiles H3 H3' Hne).
Qed.

(** They lie in the area, and are aligned *)
Lemma live_in_area o s : live !! o = Some s -> 0 <= o /\ 0 < s /\ o + s <= JMEM_HEAP_AREA_SIZE cfg.
Proof.
  intros Hl. rewrite <- (list_total _ _ _ (heap_list _ _ _ _ (rep_heap _ _ _ _ _ Hrep))). destruct (rep_live _ _ _ _ _ Hrep o s Hl) as (Hs & [(H1 & (p & Hp & Hc) & _)|(H1 & _ & H)]).
  - pose proof (rep_pages_blocks _ _ _ _ _ Hrep p Hp) as Hb. apply blocks_bounds in Hb; [| exact rep_tiles]. apply cell_in_page in Hc.
    unfold JMEM_CELLOCATOR_PAGE_HEADER_SIZE, JMEM_CELLOCATOR_CELL_SIZE in *. lia.
  - apply blocks_bounds in H; [| exact rep_tiles]. lia.
Qed.
End Invariant.

Arguments mem_rep cfg reserved j ts pages fc live : clear implicits.

(** ** The operations keep the invariant *)

Section Operations.
Context (cfg : jmem_config).
Context (reserved : option (Z * Z)).
Hypothesis Hcfg : jmem_config_ok cfg.

Notation rep := (mem_rep cfg reserved).

Lemma page_chain_frame m m' start pages : (forall p, p ∈ pages -> m' !! p = m !! p) -> page_chain cfg m start pages -> page_chain cfg m' start pages.
Proof.
  revert start. induction pages as [|p pages IH]; intros start Hf; cbn; [tauto |]. intros (-> & next & Hp & Hc). split; [reflexivity |]. exists next.
  split; [rewrite Hf; [assumption | apply elem_of_cons; now left] |]. apply IH; [| assumption]. intros q Hq. apply Hf, elem_of_cons. now right.
Qed.

Lemma cell_chain_frame m m' start fc : (forall c, c ∈ fc -> m' !! c = m !! c) -> cell_chain m start fc -> cell_chain m' start fc.
Proof.
  revert start. induction fc as [|c fc IH]; intros start Hf; cbn; [tauto |]. intros (-> & next & Hp & Hc). split; [reflexivity |]. exists next.
  split; [rewrite Hf; [assumption | apply elem_of_cons; now left] |]. apply IH; [| assumption]. intros q Hq. apply Hf, elem_of_cons. now right.
Qed.

(** *** Looking for the page of an address *)

Lemma find_loop_none j ptr pages start fuel : page_chain cfg (memory j) start pages -> (length pages < fuel)%nat ->
  (forall p, p ∈ pages -> ~ (p + JMEM_CELLOCATOR_PAGE_HEADER_SIZE <= ptr <= p + JMEM_CELLOCATOR_PAGE_HEADER_SIZE + JMEM_CELLOCATOR_CELL_SIZE * (vm_cell_count cfg - 1))) ->
  find_loop fuel start ptr j = DONE None j.
Proof.
  revert start fuel. induction pages as [|p pages IH]; intros start fuel Hc Hf Hn; (destruct fuel as [|fuel]; [cbn in Hf; lia |]); cbn in Hc |- *; [now subst start |].
  destruct Hc as (-> & next & Hp & Hc). unfold read_page. erewrite bind_done by now rewrite Hp. cbn [start_p end_p next_p].
  specialize (Hn p ltac:(apply elem_of_cons; now left)) as Hnp.
  replace ((p + JMEM_CELLOCATOR_PAGE_HEADER_SIZE <=? ptr) && _) with false by (symmetry; apply andb_false_iff; rewrite !Z.leb_gt; lia).
  apply IH; [assumption | cbn in Hf; lia |]. intros q Hq. apply Hn, elem_of_cons. now right.
Qed.

Lemma find_loop_some j ptr p pages start fuel : page_chain cfg (memory j) start pages -> (length pages < fuel)%nat -> p ∈ pages -> cell_of cfg p ptr ->
  exists q, find_loop fuel start ptr j = DONE (Some q) j.
Proof.
  revert start fuel. induction pages as [|q pages IH]; intros start fuel Hc Hf Hp Hin; [now rewrite elem_of_nil in Hp |].
  destruct fuel as [|fuel]; [cbn in Hf; lia |]. cbn in Hc |- *. destruct Hc as (-> & next & Hq & Hc). unfold read_page. erewrite bind_done by now rewrite Hq.
  cbn [start_p end_p next_p]. destruct (_ && _) eqn:E; [now exists q |]. apply elem_of_cons in Hp as [->|Hp].
  - exfalso. destruct Hin as (k & Hk & ->). apply andb_false_iff in E. rewrite !Z.leb_gt in E. unfold JMEM_CELLOCATOR_CELL_SIZE in *. lia.
  - apply IH; [assumption | cbn in Hf; lia | assumption | assumption].
Qed.

Lemma blocks_dom_length base ts l : NoDup l -> (forall p, p ∈ l -> is_Some (blocks base ts !! p)) -> (length l <= length ts)%nat.
Proof.
  revert base l. induction ts as [|[n|n] ts IH]; intros base l Hnd Hl; cbn in *.
  - destruct l as [|p l]; [cbn; lia |]. destruct (Hl p) as [x Hx]; [apply elem_of_cons; now left |]. now rewrite lookup_empty in Hx.
  - specialize (IH (base + n) l Hnd Hl). lia.
  - destruct (decide (base ∈ l)) as [Hin|Hin].
    + apply list_elem_of_split in Hin as (a & b & ->). apply NoDup_app in Hnd as (Ha & Hab & Hb). apply NoDup_cons in Hb as [Hbb Hb].
      specialize (IH (base + n) (a ++ b)). rewrite !length_app in *. cbn [length] in *.
      assert (length a + length b <= length ts)%nat; [| lia]. apply IH.
      * apply NoDup_app. splits; [assumption | | assumption]. intros x Hx Hx'. apply (Hab x Hx), elem_of_cons. now right.
      * intros p Hp. destruct (Hl p) as [x Hx].
        { apply elem_of_app. apply elem_of_app in Hp as [Hp|Hp]; [now left | right; apply elem_of_cons; now right]. }
        rewrite lookup_insert_ne in Hx; [now exists x |]. intros <-. apply elem_of_app in Hp as [Hp|Hp]; [| contradiction].
        apply (Hab base Hp), elem_of_cons. now left.
    + specialize (IH (base + n) l Hnd). assert (length l <= length ts)%nat; [| lia]. apply IH. intros p Hp. destruct (Hl p Hp) as [x Hx].
      rewrite lookup_insert_ne in Hx; [now exists x | congruence].
Qed.

Lemma pages_length j ts pages fc live : rep j ts pages fc live -> (length pages < S (list_fuel cfg))%nat.
Proof.
  intros H. pose proof (rep_tiles cfg H) as Hok.
  assert (length pages <= length ts)%nat.
  { apply (blocks_dom_length 0); [exact (rep_pages_nodup _ _ _ _ _ _ H) |]. intros p Hp. exists (page_size cfg). now apply (rep_pages_blocks _ _ _ _ _ _ H). }
  assert (Hlen : Z.of_nat (length ts) <= total ts).
  { clear - Hok. induction Hok as [|t ts [Ht _] Hts IH]; [reflexivity |]. cbn [length total]. lia. }
  rewrite (list_total _ _ _ (heap_list _ _ _ _ (rep_heap _ _ _ _ _ _ H))) in Hlen. unfold list_fuel. lia.
Qed.

Lemma find_cell j ts pages fc live ptr : rep j ts pages fc live -> in_cells cfg pages ptr -> exists q, jmem_cellocator_find cfg ptr j = DONE (Some q) j.
Proof.
  intros H (p & Hp & Hc). unfold jmem_cellocator_find. erewrite bind_done by reflexivity. cbv zeta.
  eapply find_loop_some; [exact (rep_pages _ _ _ _ _ _ H) | eapply pages_length, H | exact Hp | exact Hc].
Qed.

Lemma find_block j ts pages fc live ptr n : rep j ts pages fc live -> blocks 0 ts !! ptr = Some n -> jmem_cellocator_find cfg ptr j = DONE None j.
Proof.
  intros H Hb. unfold jmem_cellocator_find. erewrite bind_done by reflexivity. cbv zeta.
  eapply find_loop_none; [exact (rep_pages _ _ _ _ _ _ H) | eapply pages_length, H |]. intros p Hp Hin.
  pose proof (rep_tiles cfg H) as Hok. pose proof (rep_pages_blocks _ _ _ _ _ _ H p Hp) as Hpb.
  pose proof (blocks_bounds 0 ts ptr n Hok Hb). assert (Hne : ptr <> p).
  { intros ->. unfold JMEM_CELLOCATOR_PAGE_HEADER_SIZE in *. lia. }
  unfold JMEM_CELLOCATOR_PAGE_HEADER_SIZE, JMEM_CELLOCATOR_CELL_SIZE in *.
  pose proof (cell_count_range _ Hcfg). unfold page_size, JMEM_CELLOCATOR_PAGE_HEADER_SIZE, JMEM_CELLOCATOR_CELL_SIZE in Hpb.
  destruct (blocks_disjoint 0 ts ptr n p _ Hok Hb Hpb Hne); lia.
Qed.

(** *** Taking and returning cells *)

Lemma rep_no_heap_write j ts m pages' cells' g : heap_ok cfg reserved j ts -> (forall o, o ∈ (nodes ts).*1 -> m !! o = memory j !! o) ->
  heap_ok cfg reserved (mk_jmem m (jmem_heap_list_skip_p j) (jmem_heap_allocated_size j) (jmem_heap_limit j) pages' cells' g) ts.
Proof.
  intros [[] Hacc Hres] Hm. split; [split; try assumption | exact Hacc | exact Hres]. cbn [memory]. now eapply seg_frame; [exact Hm |].
Qed.

Lemma cell_alloc_none j ts pages live : rep j ts pages [] live -> jmem_cellocator_alloc j = DONE None j.
Proof. intros H. pose proof (rep_cells _ _ _ _ _ _ H) as Hc. cbn in Hc. unfold jmem_cellocator_alloc. erewrite bind_done by reflexivity. now rewrite Hc. Qed.

Lemma cell_alloc_some j ts pages c fc live s : rep j ts pages (c :: fc) live -> 0 < s <= jmem_align s -> jmem_align s <= JMEM_CELLOCATOR_CELL_SIZE ->
  exists j', jmem_cellocator_alloc j = DONE (Some c) j' /\ rep j' ts pages fc (<[c := s]> live) /\ live !! c = None
    /\ memory j' = memory j /\ engine j' = engine j.
Proof.
  intros H Hs Hsmall. pose proof (rep_cells _ _ _ _ _ _ H) as Hc. cbn in Hc. destruct Hc as (Efc & next & Hm & Hc).
  assert (Hin : in_cells cfg pages c) by (apply (rep_cells_in _ _ _ _ _ _ H), elem_of_cons; now left).
  pose proof (rep_cells_nodup _ _ _ _ _ _ H) as Hnd. apply NoDup_cons in Hnd as [Hcf Hnd].
  assert (Hnone : live !! c = None).
  { destruct (live !! c) as [x|] eqn:E; [exfalso | reflexivity]. destruct (rep_live _ _ _ _ _ _ H c x E) as (_ & [(_ & _ & Hn)|(_ & _ & Hb)]).
    - apply Hn, elem_of_cons. now left.
    - rewrite (cell_not_block cfg H c Hin) in Hb. discriminate. }
  unfold jmem_cellocator_alloc. erewrite bind_done by reflexivity. rewrite Efc. unfold read_cell. erewrite bind_done by now rewrite Hm.
  eexists. split; [reflexivity |]. split; [| now splits]. split; cbn.
  - apply (rep_no_heap_write j ts (memory j)); [apply H | reflexivity].
  - apply H.
  - apply H.
  - apply H.
  - exact Hc.
  - exact Hnd.
  - intros a Ha. apply (rep_cells_in _ _ _ _ _ _ H), elem_of_cons. now right.
  - intros o x Ho. apply lookup_insert_Some in Ho as [[<- <-]|[Hne Ho]]; [split; [assumption | now left] |].
    destruct (rep_live _ _ _ _ _ _ H o x Ho) as (Hx & [(H1 & H2 & H3)|H3]); (split; [assumption |]); [left | now right].
    splits; try assumption. intros Hf. apply H3, elem_of_cons. now right.
  - intros a Ha. destruct (rep_all_cells _ _ _ _ _ _ H a Ha) as [Hf|Hl].
    + apply elem_of_cons in Hf as [->|Hf]; [right; rewrite lookup_insert_eq; now exists s | now left].
    + right. destruct (Z.eq_dec a c) as [->|Hne]; [rewrite lookup_insert_eq; now exists s | now rewrite lookup_insert_ne by congruence].
  - intros o n Ho. destruct (rep_all_blocks _ _ _ _ _ _ H o n Ho) as [Hp|Hl]; [now left | right].
    destruct (Z.eq_dec o c) as [->|Hne]; [rewrite lookup_insert_eq; now exists s | now rewrite lookup_insert_ne by congruence].
  - apply H.
  - intros o x Ho. apply (rep_unreachable _ _ _ _ _ _ H) in Ho. rewrite lookup_insert_ne; [assumption | congruence].
  - apply H.
Qed.

#[export] Instance pressure_dec : EqDecision jmem_pressure_t.
Proof. solve_decision. Defined.
#[export] Instance cell_of_dec p c : Decision (cell_of cfg p c).
Proof.
  refine (cast_if (decide (0 <= c - p - JMEM_CELLOCATOR_PAGE_HEADER_SIZE /\ (c - p - JMEM_CELLOCATOR_PAGE_HEADER_SIZE) mod JMEM_CELLOCATOR_CELL_SIZE = 0
    /\ (c - p - JMEM_CELLOCATOR_PAGE_HEADER_SIZE) / JMEM_CELLOCATOR_CELL_SIZE < vm_cell_count cfg))); unfold cell_of, JMEM_CELLOCATOR_CELL_SIZE in *.
  - exists ((c - p - JMEM_CELLOCATOR_PAGE_HEADER_SIZE) / 32). split; [split; [Z.div_mod_to_equations; lia | tauto] | Z.div_mod_to_equations; lia].
  - intros (k & Hk & ->). apply n. replace (p + JMEM_CELLOCATOR_PAGE_HEADER_SIZE + 32 * k - p - JMEM_CELLOCATOR_PAGE_HEADER_SIZE) with (k * 32) by lia.
    rewrite Z.mod_mul, Z.div_mul by lia. lia.
Defined.
#[export] Instance in_cells_dec pages c : Decision (in_cells cfg pages c).
Proof.
  refine (cast_if (decide (Exists (fun p => cell_of cfg p c) pages))).
  - abstract (apply Exists_exists in e as (p & Hp & Hc); now exists p).
  - abstract (intros (p & Hp & Hc); apply n, Exists_exists; now exists p).
Defined.

Lemma cell_free_spec j ts pages fc live o s : rep j ts pages fc live -> live !! o = Some s -> in_cells cfg pages o -> o ∉ (pending (engine j)).*1 ->
  exists j', jmem_cellocator_cell_free o j = DONE tt j' /\ rep j' ts pages (o :: fc) (delete o live)
    /\ (forall a, a <> o -> memory j' !! a = memory j !! a) /\ engine j' = engine j.
Proof.
  intros H Hl Hin Hg. assert (Hfc : o ∉ fc).
  { destruct (rep_live _ _ _ _ _ _ H o s Hl) as (_ & [(_ & _ & Hn)|(_ & _ & Hb)]); [assumption |].
    rewrite (cell_not_block cfg H o Hin) in Hb. discriminate. }
  eexists. split; [reflexivity |]. split; [| split; [intros a Ha; cbn; now apply lookup_insert_ne | reflexivity]].
  assert (Hnode : o ∉ (nodes ts).*1).
  { intros Hno. apply (node_not_in_block ts o (rep_tiles cfg H) Hno), (cell_slot_in_block cfg H o); [assumption |]. unfold JMEM_CELLOCATOR_CELL_SIZE. lia. }
  split; cbn [memory cell_pages free_cells engine jmem_heap_list_skip_p jmem_heap_allocated_size jmem_heap_limit].
  - apply (rep_no_heap_write j ts); [apply H |]. intros a Ha. apply lookup_insert_ne. intros ->. contradiction.
  - eapply page_chain_frame; [| apply H]. intros p Hp. apply lookup_insert_ne. intros ->. now apply (cell_not_page cfg H p).
  - apply H.
  - apply H.
  - split; [reflexivity |]. exists (free_cells j). split; [apply lookup_insert_eq |]. eapply cell_chain_frame; [| apply H].
    intros c Hc. apply lookup_insert_ne. intros ->. contradiction.
  - constructor; [assumption | apply H].
  - intros c Hc. apply elem_of_cons in Hc as [->|Hc]; [assumption | now apply (rep_cells_in _ _ _ _ _ _ H)].
  - intros q x Hq. apply lookup_delete_Some in Hq as [Hne Hq]. destruct (rep_live _ _ _ _ _ _ H q x Hq) as (Hx & [(H1 & H2 & H3)|H3]); (split; [assumption |]); [left | now right].
    splits; try assumption. rewrite elem_of_cons. intros [->|Hf]; [congruence | contradiction].
  - intros c Hc. destruct (Z.eq_dec c o) as [->|Hne]; [left; apply elem_of_cons; now left |].
    destruct (rep_all_cells _ _ _ _ _ _ H c Hc) as [Hf|Hf]; [left; apply elem_of_cons; now right | right; now rewrite lookup_delete_ne by congruence].
  - intros q n Hq. destruct (rep_all_blocks _ _ _ _ _ _ H q n Hq) as [Hp|Hp]; [now left | right]. rewrite lookup_delete_ne; [assumption |].
    intros <-. rewrite (cell_not_block cfg H o Hin) in Hq. discriminate.
  - apply H.
  - intros q x Hq. rewrite lookup_delete_ne; [now apply (rep_unreachable _ _ _ _ _ _ H) |]. intros <-. apply Hg, list_elem_of_fmap. now exists (o, x).
  - apply H.
Qed.

(** *** Changes of the regions *)

(** The block of an address among the tiles *)
Lemma blocks_split base ts o n : blocks base ts !! o = Some n -> exists pre post, ts = pre ++ USED n :: post /\ o = base + total pre.
Proof.
  revert base. induction ts as [|[k|k] ts IH]; intros base; cbn; [now rewrite lookup_empty | |].
  - intros H. destruct (IH _ H) as (pre & post & -> & ->). exists (FREE k :: pre), post. cbn. split; [reflexivity | lia].
  - intros H. apply lookup_insert_Some in H as [[<- <-]|[_ H]]; [exists [], ts; cbn; split; [reflexivity | lia] |].
    destruct (IH _ H) as (pre & post & -> & ->). exists (USED k :: pre), post. cbn. split; [reflexivity | lia].
Qed.

(** The invariant after the regions changed outside of the pages: the clients'
    blocks that are not cells must be the blocks that are not pages *)
Lemma rep_change r' j j' ts ts' pages fc live live' : rep j ts pages fc live -> heap_ok cfg r' j' ts' ->
  (forall p, p ∈ pages -> blocks 0 ts' !! p = blocks 0 ts !! p) ->
  (forall p a, p ∈ pages -> p <= a < p + page_size cfg -> memory j' !! a = memory j !! a) ->
  cell_pages j' = cell_pages j -> free_cells j' = free_cells j ->
  (forall c, in_cells cfg pages c -> live' !! c = live !! c) ->
  (forall o s, ~ in_cells cfg pages o -> live' !! o = Some s -> 0 < s <= jmem_align s /\ JMEM_CELLOCATOR_CELL_SIZE < jmem_align s /\ o ∉ pages /\ blocks 0 ts' !! o = Some (jmem_align s)) ->
  (forall o n, blocks 0 ts' !! o = Some n -> o ∈ pages \/ is_Some (live' !! o)) ->
  NoDup (pending (engine j')).*1 -> (forall o s, (o, s) ∈ pending (engine j') -> live' !! o = Some s) ->
  (forall o n, r' = Some (o, n) -> o ∉ (pending (engine j')).*1) -> mem_rep cfg r' j' ts' pages fc live'.
Proof.
  intros H Hh Hpb Hmem Ep Ef Hcells Hlive Hall Hnd Hg Hres.
  assert (Hpage : forall p, p ∈ pages -> memory j' !! p = memory j !! p).
  { intros p Hp. apply (Hmem p); [assumption |]. pose proof (page_size_large cfg Hcfg). unfold JMEM_CELLOCATOR_CELL_SIZE in *. lia. }
  split; try assumption.
  - rewrite Ep. eapply page_chain_frame; [exact Hpage | apply H].
  - apply H.
  - intros p Hp. rewrite Hpb by assumption. now apply (rep_pages_blocks _ _ _ _ _ _ H).
  - rewrite Ef. eapply cell_chain_frame; [| apply H]. intros c Hc. destruct (rep_cells_in _ _ _ _ _ _ H c Hc) as (p & Hp & Hcp).
    apply (Hmem p); [assumption |]. apply cell_in_page in Hcp. unfold JMEM_CELLOCATOR_PAGE_HEADER_SIZE, JMEM_CELLOCATOR_CELL_SIZE in *. lia.
  - apply H.
  - apply H.
  - intros o s Ho. destruct (decide (in_cells cfg pages o)) as [Hc|Hc]; [| specialize (Hlive o s Hc Ho); unfold stored; tauto].
    rewrite Hcells in Ho by assumption. destruct (rep_live _ _ _ _ _ _ H o s Ho) as (Hs & [C|(_ & _ & Hb)]); [split; tauto |].
    rewrite (cell_not_block cfg H o Hc) in Hb. discriminate.
  - intros c Hc. rewrite Hcells by assumption. now apply (rep_all_cells _ _ _ _ _ _ H).
Qed.

(** No client holds the rest of a block *)
Lemma live_not_page j ts pages fc live o : rep j ts pages fc live -> ~ in_cells cfg pages o -> is_Some (live !! o) -> o ∉ pages.
Proof. intros H Hc [s Hl]. destruct (rep_live _ _ _ _ _ _ H o s Hl) as (_ & [(_ & Hin & _)|(_ & Hp & _)]); [contradiction | assumption]. Qed.

Lemma live_block j ts pages fc live o s : rep j ts pages fc live -> live !! o = Some s -> ~ in_cells cfg pages o ->
  0 < s <= jmem_align s /\ JMEM_CELLOCATOR_CELL_SIZE < jmem_align s /\ o ∉ pages /\ blocks 0 ts !! o = Some (jmem_align s).
Proof. intros H Hl Hc. destruct (rep_live _ _ _ _ _ _ H o s Hl) as (Hs & [(_ & Hin & _)|C]); [contradiction | tauto]. Qed.

(** The contents of the live blocks are in the blocks of the area *)
Lemma keeps_to_live j j' ts0 ts pages fc live live' : rep j ts pages fc live -> keeps ts0 j j' ->
  (forall a, in_block ts a -> (exists o s, live' !! o = Some s /\ o <= a < o + s) -> in_block ts0 a) ->
  (forall o s, live' !! o = Some s -> live !! o = Some s) -> keeps_live live' j j'.
Proof.
  intros H (Hk & _) Hsub Hll o s a Hl Ha. apply Hk. apply Hsub; [| now exists o, s]. eapply (live_slot_in_block cfg H); [apply Hll, Hl | exact Ha].
Qed.

(** A block of the heap is released *)
Lemma rep_release r' j j' pre n post pages fc live s : rep j (pre ++ USED n :: post) pages fc live -> live !! total pre = Some s -> n = jmem_align s ->
  ~ in_cells cfg pages (total pre) -> total pre ∉ (pending (engine j)).*1 -> heap_ok cfg r' j' (coalesce (pre ++ FREE n :: post)) -> keeps (pre ++ FREE n :: post) j j' ->
  (forall o n, r' = Some (o, n) -> o ∉ (pending (engine j)).*1) ->
  mem_rep cfg r' j' (coalesce (pre ++ FREE n :: post)) pages fc (delete (total pre) live) /\ keeps_live (delete (total pre) live) j j'.
Proof.
  intros H Hl -> Hc Hg Hh Hk Hr. destruct (live_block _ _ _ _ _ _ _ H Hl Hc) as (Hs & Hbig & Hp & Hb). pose proof (rep_tiles cfg H) as Hok.
  pose proof Hk as (Hkm & Ep & Ef & Eu). pose proof (blocks_release pre _ post Hok) as Hrel. set (o := total pre) in *. set (n := jmem_align s) in *.
  assert (Hkept : forall q m, blocks 0 (pre ++ USED n :: post) !! q = Some m -> q <> o -> blocks 0 (pre ++ FREE n :: post) !! q = Some m).
  { intros q m Hq Hne. rewrite Hrel, lookup_delete_ne by congruence. exact Hq. }
  split.
  - eapply rep_change; try exact H; try assumption; rewrite ?blocks_coalesce, ?Eu.
    + intros p Hpp. rewrite Hrel, lookup_delete_ne; [reflexivity | congruence].
    + intros p a Hpp Ha. apply Hkm. exists p, (page_size cfg). split; [| assumption]. apply Hkept; [now apply (rep_pages_blocks _ _ _ _ _ _ H) | congruence].
    + intros c Hcc. apply lookup_delete_ne. congruence.
    + intros q t Hq Ht. apply lookup_delete_Some in Ht as [Hne Ht]. destruct (live_block _ _ _ _ _ _ _ H Ht Hq) as (? & ? & ? & Hbq).
      splits; try assumption; try tauto. now apply Hkept.
    + intros q m Hq. rewrite Hrel in Hq. apply lookup_delete_Some in Hq as [Hne Hq]. rewrite lookup_delete_ne by assumption. now apply (rep_all_blocks _ _ _ _ _ _ H q m).
    + apply H.
    + intros q t Hq. rewrite lookup_delete_ne; [now apply (rep_unreachable _ _ _ _ _ _ H) |]. intros <-. apply Hg, list_elem_of_fmap. now exists (o, t).
    + exact Hr.
  - eapply keeps_to_live; [exact H | exact Hk | | intros q t Hq; now apply lookup_delete_Some in Hq as [_ Hq]].
    intros a (b & m & Hbm & Ha) (q & t & Hq & Hat). exists b, m. split; [| assumption]. apply Hkept; [assumption |]. intros ->.
    assert (m = n) as -> by congruence. apply lookup_delete_Some in Hq as [Hne Hq].
    pose proof (align_extent s). pose proof (rep_live _ _ _ _ _ _ H q t Hq) as (Ht & _). pose proof (align_extent t).
    destruct (live_disjoint cfg H q t o s Hq Hl ltac:(congruence)); unfold n in *; lia.
Qed.

Lemma free_block_spec j ts pages fc live o s size : rep j ts pages fc live -> live !! o = Some s -> jmem_align size = jmem_align s -> o ∉ (pending (engine j)).*1 ->
  (forall n, reserved <> Some (o, n)) ->
  exists j' ts' fc', jmem_heap_free_block cfg o size j = DONE tt j' /\ rep j' ts' pages fc' (delete o live)
    /\ keeps_live (delete o live) j j' /\ engine j' = engine j.
Proof.
  intros H Hl Hsize Hg Hfree. unfold jmem_heap_free_block. destruct (decide (in_cells cfg pages o)) as [Hc|Hc].
  - destruct (find_cell j ts pages fc live o H Hc) as [q Hf]. erewrite bind_done by exact Hf.
    destruct (cell_free_spec j ts pages fc live o s H Hl Hc Hg) as (j' & Hd & Hr & Hm & Hu). exists j', ts, (o :: fc). splits; try assumption.
    intros b t a Hb Ha. apply lookup_delete_Some in Hb as [Hne Hb]. apply Hm. intros ->. destruct (rep_live _ _ _ _ _ _ H o s Hl) as (Hs & _).
    pose proof (align_extent s). pose proof (align_extent t). destruct (rep_live _ _ _ _ _ _ H b t Hb) as (Ht & _).
    destruct (live_disjoint cfg H b t o s Hb Hl ltac:(congruence)); lia.
  - destruct (live_block _ _ _ _ _ _ _ H Hl Hc) as (Hs & Hbig & Hp & Hb). rewrite (bind_done _ _ _ _ _ (find_block j ts pages fc live o _ H Hb)).
    destruct (blocks_split 0 ts o _ Hb) as (pre & post & -> & ->). rewrite Z.add_0_l in *.
    destruct (free_region_spec cfg (heap_config_ok _ Hcfg) reserved j pre _ post size (rep_heap _ _ _ _ _ _ H) Hsize Hfree) as (j' & Hd & Hh & Hk).
    destruct (rep_release reserved j j' pre _ post pages fc live s H Hl eq_refl Hc Hg Hh Hk (rep_reserved _ _ _ _ _ _ H)) as [Hr Hkl].
    exists j', (coalesce (pre ++ FREE (jmem_align s) :: post)), fc. splits; try assumption. apply Hk.
Qed.

(** *** Collections *)

Context (low_pressure_runs : jmem_context -> bool).

(** The blocks left when those of [l] are released *)
Definition collect (live : gmap Z Z) (l : list (Z * Z)) : gmap Z Z := fold_left (fun m x => delete x.1 m) l live.

Lemma collect_subset l : forall live o s, collect live l !! o = Some s -> live !! o = Some s.
Proof. induction l as [|[q t] l IH]; intros live o s H; cbn in H; [assumption |]. apply IH in H. now apply lookup_delete_Some in H as [_ H]. Qed.

Lemma keeps_live_trans live1 live2 j1 j2 j3 : (forall o s, live2 !! o = Some s -> live1 !! o = Some s) ->
  keeps_live live1 j1 j2 -> keeps_live live2 j2 j3 -> keeps_live live2 j1 j3.
Proof. intros Hs H1 H2 o s a Hl Ha. rewrite (H2 o s a Hl Ha). now apply (H1 o s a); [apply Hs |]. Qed.

Lemma keeps_live_refl live j : keeps_live live j j.
Proof. now intros o s a _ _. Qed.

Lemma free_all_spec l : forall j ts pages fc live, rep j ts pages fc live -> NoDup l.*1 -> (forall o s, (o, s) ∈ l -> live !! o = Some s) ->
  (forall o, o ∈ l.*1 -> o ∉ (pending (engine j)).*1 /\ forall n, reserved <> Some (o, n)) ->
  exists j' ts' fc', free_all cfg l j = DONE tt j' /\ rep j' ts' pages fc' (collect live l) /\ keeps_live (collect live l) j j' /\ engine j' = engine j.
Proof.
  induction l as [|[o s] l IH]; intros j ts pages fc live H Hnd Hl Hg; cbn [free_all collect fold_left fst].
  - exists j, ts, fc. splits; [reflexivity | assumption | apply keeps_live_refl | reflexivity].
  - cbn in Hnd. apply NoDup_cons in Hnd as [Ho Hnd].
    destruct (free_block_spec j ts pages fc live o s s H) as (j1 & ts1 & fc1 & Hd & Hr & Hk & Hu); [apply Hl, elem_of_cons; now left | reflexivity | apply Hg, elem_of_cons; now left | apply Hg, elem_of_cons; now left |].
    erewrite bind_done by exact Hd. destruct (IH j1 ts1 pages fc1 (delete o live) Hr Hnd) as (j2 & ts2 & fc2 & Hd2 & Hr2 & Hk2 & Hu2).
    + intros q t Hq. rewrite lookup_delete_ne; [apply Hl, elem_of_cons; now right |]. intros ->. apply Ho, list_elem_of_fmap. now exists (q, t).
    + intros q Hq. rewrite Hu. apply Hg, elem_of_cons. now right.
    + exists j2, ts2, fc2. splits; [exact Hd2 | exact Hr2 | | congruence]. eapply keeps_live_trans; [| exact Hk | exact Hk2]. apply collect_subset.
Qed.

(** The blocks of the engine that were released while its state went from [e] to [e'] *)
Definition gone (e e' : engine_blocks) : list (Z * Z) :=
  (match unreachable e' with [] => unreachable e | _ => [] end) ++ (match hashmaps e' with [] => hashmaps e | _ => [] end).

(** Collections ran, or did not *)
Definition collected (e : engine_blocks) (live : gmap Z Z) (e' : engine_blocks) (live' : gmap Z Z) : Prop :=
  live' = collect live (gone e e') /\ (unreachable e' = unreachable e \/ unreachable e' = []) /\ (hashmaps e' = hashmaps e \/ hashmaps e' = []).

Lemma collect_lookup live l o : collect live l !! o = if decide (o ∈ l.*1) then None else live !! o.
Proof.
  revert live. induction l as [|[q t] l IH]; intros live; [reflexivity |]. cbn [collect fold_left]. change (fold_left _ l _) with (collect (delete q live) l). rewrite IH.
  cbn. destruct (decide (o ∈ l.*1)) as [H|H]; [rewrite decide_True; [reflexivity | apply elem_of_cons; now right] |].
  destruct (Z.eq_dec o q) as [->|Hne].
  - rewrite lookup_delete_eq, decide_True; [reflexivity | apply elem_of_cons; now left].
  - rewrite lookup_delete_ne by congruence. rewrite decide_False; [reflexivity |]. rewrite elem_of_cons. tauto.
Qed.

Lemma elem_of_gone o e e' : o ∈ (gone e e').*1 <-> (o ∈ (unreachable e).*1 /\ unreachable e' = []) \/ (o ∈ (hashmaps e).*1 /\ hashmaps e' = []).
Proof.
  unfold gone. rewrite fmap_app, elem_of_app. destruct (unreachable e'), (hashmaps e'); cbn; rewrite ?elem_of_nil; split; intros; try tauto;
    repeat match goal with H : _ \/ _ |- _ => destruct H | H : _ /\ _ |- _ => destruct H end; try discriminate; tauto.
Qed.

Lemma collected_refl e live : collected e live e live.
Proof.
  split; [| tauto]. apply map_eq. intros o. rewrite collect_lookup. destruct (decide _) as [H|]; [exfalso | reflexivity].
  apply elem_of_gone in H as [[H E]|[H E]]; rewrite E in H; now apply elem_of_nil in H.
Qed.

Lemma collected_trans e1 l1 e2 l2 e3 l3 : collected e1 l1 e2 l2 -> collected e2 l2 e3 l3 -> collected e1 l1 e3 l3.
Proof.
  intros (-> & Hu & Hh) (-> & Hu' & Hh'). split; [| split; [destruct Hu as [<-|E]; [exact Hu' | destruct Hu' as [->|E']; tauto] | destruct Hh as [<-|E]; [exact Hh' | destruct Hh' as [->|E']; tauto]]].
  apply map_eq. intros o. rewrite !collect_lookup. destruct (decide (o ∈ (gone e1 e3).*1)) as [H|H]; rewrite elem_of_gone in H.
  - destruct (decide (o ∈ (gone e2 e3).*1)) as [H23|H23]; [reflexivity |]. rewrite decide_True; [reflexivity |]. rewrite elem_of_gone in *.
    destruct H as [[H E]|[H E]]; [left | right]; (split; [assumption |]); [destruct Hu as [E1|E1] | destruct Hh as [E1|E1]]; try assumption; exfalso; apply H23; rewrite E1; tauto.
  - rewrite decide_False; [rewrite decide_False; [reflexivity |] |]; rewrite elem_of_gone; intros Hn; apply H; destruct Hn as [[Hn E]|[Hn E]]; [left | right | left | right].
    + split; [assumption | destruct Hu' as [E1|E1]; congruence].
    + split; [assumption | destruct Hh' as [E1|E1]; congruence].
    + split; [| assumption]. destruct Hu as [<-|E1]; [assumption |]. rewrite E1 in Hn. now apply elem_of_nil in Hn.
    + split; [| assumption]. destruct Hh as [<-|E1]; [assumption |]. rewrite E1 in Hn. now apply elem_of_nil in Hn.
Qed.

Lemma collected_subset e live e' live' o s : collected e live e' live' -> live' !! o = Some s -> live !! o = Some s.
Proof. intros (-> & _). apply collect_subset. Qed.

Lemma collected_keeps e live e' live' o : collected e live e' live' -> o ∉ (pending e).*1 -> live' !! o = live !! o /\ o ∉ (pending e').*1.
Proof.
  intros (-> & Hu & Hh). unfold pending. rewrite !fmap_app, !not_elem_of_app. intros [H1 H2]. split.
  - rewrite collect_lookup, decide_False; [reflexivity |]. rewrite elem_of_gone. tauto.
  - destruct Hu as [->| ->], Hh as [->| ->]; cbn; rewrite ?elem_of_nil; tauto.
Qed.

(** The contents of the remaining blocks are the same *)
Definition gc_step (j : jmem_context) (live : gmap Z Z) (j' : jmem_context) (live' : gmap Z Z) : Prop :=
  collected (engine j) live (engine j') live' /\ keeps_live live' j j'.

Lemma gc_step_refl j live : gc_step j live j live.
Proof. split; [apply collected_refl | apply keeps_live_refl]. Qed.

Lemma gc_step_trans j1 l1 j2 l2 j3 l3 : gc_step j1 l1 j2 l2 -> gc_step j2 l2 j3 l3 -> gc_step j1 l1 j3 l3.
Proof.
  intros [C12 K12] [C23 K23]. split; [eapply collected_trans; eassumption |]. eapply keeps_live_trans; [| exact K12 | exact K23].
  intros o s. eapply collected_subset, C23.
Qed.

(** Some of the pending blocks are released *)
Lemma release_spec j ts pages fc live l e' : rep j ts pages fc live -> pending (engine j) ≡ₚ l ++ pending e' ->
  exists j' ts' fc', (set_engine e';; free_all cfg l) j = DONE tt j' /\ rep j' ts' pages fc' (collect live l) /\ keeps_live (collect live l) j j' /\ engine j' = e'.
Proof.
  intros H Hp. pose proof (rep_unreachable_nodup _ _ _ _ _ _ H) as Hnd. rewrite Hp, fmap_app in Hnd. apply NoDup_app in Hnd as (Hl & Hdis & Hnd').
  erewrite bind_done by reflexivity. set (j0 := mk_jmem _ _ _ _ _ _ e'). assert (H0 : rep j0 ts pages fc live).
  { split; cbn [memory cell_pages free_cells engine j0]; try apply H; [apply (rep_no_heap_write j ts); [apply H | reflexivity] | exact Hnd' | |].
    - intros o s Ho. apply (rep_unreachable _ _ _ _ _ _ H). rewrite Hp. apply elem_of_app. now right.
    - intros o n E Ho. apply (rep_reserved _ _ _ _ _ _ H o n E). rewrite Hp, fmap_app. apply elem_of_app. now right. }
  destruct (free_all_spec l j0 ts pages fc live H0 Hl) as (j' & ts' & fc' & Hd & Hr & Hk & Hu).
  - intros o s Ho. apply (rep_unreachable _ _ _ _ _ _ H). rewrite Hp. apply elem_of_app. now left.
  - intros o Ho. split; [now apply Hdis |]. intros n E. apply (rep_reserved _ _ _ _ _ _ H o n E). rewrite Hp, fmap_app. apply elem_of_app. now left.
  - exists j', ts', fc'. splits; [exact Hd | exact Hr | exact Hk | exact Hu].
Qed.

Lemma gc_run_spec j ts pages fc live : rep j ts pages fc live ->
  exists j' ts' fc' live', ecma_gc_run cfg j = DONE tt j' /\ rep j' ts' pages fc' live' /\ gc_step j live j' live' /\ engine j' = mk_engine [] (hashmaps (engine j)).
Proof.
  intros H. destruct (release_spec j ts pages fc live (unreachable (engine j)) (mk_engine [] (hashmaps (engine j))) H) as (j' & ts' & fc' & Hd & Hr & Hk & Hu); [reflexivity |].
  exists j', ts', fc', (collect live (unreachable (engine j))). splits; [exact Hd | exact Hr | | exact Hu]. split; [| exact Hk].
  rewrite Hu. split; [| cbn; tauto]. unfold gone. cbn. f_equal. destruct (hashmaps (engine j)); now rewrite app_nil_r.
Qed.

Lemma free_hashmaps_spec j ts pages fc live : rep j ts pages fc live ->
  exists j' ts' fc' live', free_hashmaps cfg j = DONE tt j' /\ rep j' ts' pages fc' live' /\ gc_step j live j' live' /\ engine j' = mk_engine (unreachable (engine j)) [].
Proof.
  intros H. destruct (release_spec j ts pages fc live (hashmaps (engine j)) (mk_engine (unreachable (engine j)) []) H) as (j' & ts' & fc' & Hd & Hr & Hk & Hu).
  { unfold pending. cbn. rewrite app_nil_r. apply Permutation_app_comm. }
  exists j', ts', fc', (collect live (hashmaps (engine j))). splits; [exact Hd | exact Hr | | exact Hu]. split; [| exact Hk].
  rewrite Hu. split; [| cbn; tauto]. unfold gone. cbn. now destruct (unreachable (engine j)).
Qed.

Lemma free_unused_spec p j ts pages fc live : rep j ts pages fc live -> p = JMEM_PRESSURE_LOW \/ p = JMEM_PRESSURE_HIGH ->
  exists j' ts' fc' live', ecma_free_unused_memory cfg low_pressure_runs p j = DONE tt j' /\ rep j' ts' pages fc' live'
    /\ gc_step j live j' live' /\ (p = JMEM_PRESSURE_HIGH -> engine j' = mk_engine [] []).
Proof.
  intros H Hp. destruct (gc_run_spec j ts pages fc live H) as (j1 & ts1 & fc1 & live1 & Hd & Hr & Hg & Hu).
  destruct Hp as [->| ->]; cbn [ecma_free_unused_memory].
  - erewrite bind_done by reflexivity. cbv zeta. destruct (low_pressure_runs j).
    + exists j1, ts1, fc1, live1. splits; try assumption. discriminate.
    + exists j, ts, fc, live. splits; [reflexivity | assumption | apply gc_step_refl | discriminate].
  - erewrite bind_done by exact Hd. destruct (free_hashmaps_spec j1 ts1 pages fc1 live1 Hr) as (j2 & ts2 & fc2 & live2 & Hd2 & Hr2 & Hg2 & Hu2).
    exists j2, ts2, fc2, live2. splits; [exact Hd2 | exact Hr2 | eapply gc_step_trans; eassumption | intros _; now rewrite Hu2, Hu].
Qed.

(** *** Allocation *)

(** No region is left for the request, or for a page of cells *)
Definition exhausted (ts : list tile) (s : Z) : Prop :=
  first_fit (if jmem_align s <=? JMEM_CELLOCATOR_CELL_SIZE then page_size cfg else jmem_align s) ts = None.

(** The result of a request for [s] bytes: a block apart from all others, or NULL *)
Definition allocated (j : jmem_context) (live : gmap Z Z) (s : Z) (res : option Z) (j' : jmem_context) : Prop :=
  exists live1, gc_step j live j' live1 /\
    match res with
    | Some p => live1 !! p = None /\ p ∉ (pending (engine j')).*1
        /\ (JMEM_CELLOCATOR_CELL_SIZE < jmem_align s -> limit_after cfg reserved (jmem_align s) j')
        /\ exists ts pages fc, rep j' ts pages fc (<[p := s]> live1)
    | None => exists ts pages fc, rep j' ts pages fc live1 /\ exhausted ts s
    end.

Lemma allocated_after j1 l1 j2 l2 s res j3 : gc_step j1 l1 j2 l2 -> allocated j2 l2 s res j3 -> allocated j1 l1 s res j3.
Proof. intros H (l3 & Hg & Hres). exists l3. split; [eapply gc_step_trans; eassumption | exact Hres]. Qed.

Lemma unreachable_fresh j ts pages fc live p : rep j ts pages fc live -> live !! p = None -> p ∉ (pending (engine j)).*1.
Proof.
  intros H Hn Hin. apply list_elem_of_fmap in Hin as ([o s] & -> & Hin). apply (rep_unreachable _ _ _ _ _ _ H) in Hin. cbn in Hn. congruence.
Qed.

Lemma region_alloc_spec j ts pages fc live s : rep j ts pages fc live -> 0 < s <= jmem_align s -> JMEM_CELLOCATOR_CELL_SIZE < jmem_align s ->
  exists res j', alloc_region cfg (jmem_align s) j = DONE res j' /\ allocated j live s res j'
    /\ match res with Some p => exists ts', rep j' ts' pages fc (<[p := s]> live) /\ engine j' = engine j | None => j' = j end.
Proof.
  intros H Hs Hbig. assert (Hd : (JMEM_ALIGNMENT | jmem_align s)) by apply Z.divide_factor_r.
  pose proof (alloc_region_spec cfg (heap_config_ok _ Hcfg) reserved j ts (jmem_align s) (rep_heap _ _ _ _ _ _ H) ltac:(unfold JMEM_ALIGNMENT, JMEM_CELLOCATOR_CELL_SIZE in *; lia) Hd) as Ha.
  destruct (first_fit (jmem_align s) ts) as [[[pre k] post]|] eqn:Ef.
  - destruct Ha as (j' & Hd' & Hh & Hk & Hlim). apply first_fit_some in Ef as (-> & Hfit & _). pose proof (rep_tiles cfg H) as Hok.
    pose proof Hok as Hok'. apply Forall_app in Hok' as [Hpre Hpost]. pose proof Hk as (Hkm & Ep & Efc & Eu).
    destruct (blocks_allocate pre k post (jmem_align s) Hpre Hpost ltac:(lia) Hd) as [Hb Hbn]. set (o := total pre) in *. set (n := jmem_align s) in *.
    assert (Hno : ~ in_cells cfg pages o).
    { intros (p & Hp & Hc). pose proof (rep_pages_blocks _ _ _ _ _ _ H p Hp) as Hpb. apply cell_in_page in Hc. unfold JMEM_CELLOCATOR_PAGE_HEADER_SIZE in Hc.
      pose proof (list_tiles _ _ _ (heap_list _ _ _ _ Hh)) as Hok2.
      assert (H1 : blocks 0 (pre ++ USED n :: free_tile (k - n) post) !! o = Some n) by (rewrite Hb; apply lookup_insert_eq).
      assert (H2 : blocks 0 (pre ++ USED n :: free_tile (k - n) post) !! p = Some (page_size cfg)) by (rewrite Hb, lookup_insert_ne by congruence; exact Hpb).
      destruct (blocks_disjoint 0 _ o n p _ Hok2 H1 H2 ltac:(congruence)); unfold JMEM_CELLOCATOR_CELL_SIZE in *; lia. }
    assert (Hnone : live !! o = None).
    { destruct (live !! o) as [x|] eqn:E; [exfalso | reflexivity]. destruct (live_block _ _ _ _ _ _ _ H E Hno) as (_ & _ & _ & Hx). congruence. }
    assert (Hr : rep j' (pre ++ USED n :: free_tile (k - n) post) pages fc (<[o := s]> live)).
    { eapply rep_change; try exact H; try assumption; rewrite ?Eu; try apply H.
      - intros p Hp. rewrite Hb, lookup_insert_ne; [reflexivity |]. intros <-. rewrite (rep_pages_blocks _ _ _ _ _ _ H o Hp) in Hbn. discriminate.
      - intros p a Hp Ha. apply Hkm. exists p, (page_size cfg). split; [now apply (rep_pages_blocks _ _ _ _ _ _ H) | assumption].
      - intros c Hc. apply lookup_insert_ne. congruence.
      - intros q t Hq Ht. rewrite Hb. apply lookup_insert_Some in Ht as [[<- <-]|[Hne Ht]].
        + splits; try assumption; try lia; [| apply lookup_insert_eq]. intros Hp. rewrite (rep_pages_blocks _ _ _ _ _ _ H o Hp) in Hbn. discriminate.
        + rewrite lookup_insert_ne by assumption. eapply live_block; eassumption.
      - intros q m. rewrite Hb, lookup_insert_Some. intros [[<- _]|[Hne Hq]]; [right; rewrite lookup_insert_eq; now exists s |].
        rewrite lookup_insert_ne by assumption. eapply rep_all_blocks; eassumption.
      - intros q t Hq. apply (rep_unreachable _ _ _ _ _ _ H) in Hq. rewrite lookup_insert_ne; congruence. }
    exists (Some o), j'. splits; [exact Hd' | | now exists (pre ++ USED n :: free_tile (k - n) post)].
    exists live. split; [split; [rewrite Eu; apply collected_refl |] |].
    + intros q t a Hq Ha. apply Hkm. eapply (live_slot_in_block cfg H); eassumption.
    + splits; [assumption | | now intros _ | now exists (pre ++ USED n :: free_tile (k - n) post), pages, fc]. rewrite Eu. eapply unreachable_fresh; eassumption.
  - exists None, j. splits; [exact Ha | | reflexivity]. exists live. split; [apply gc_step_refl |]. exists ts, pages, fc. split; [assumption |].
    unfold exhausted. now rewrite (proj2 (Z.leb_gt _ _)) by lia.
Qed.

(** *** Collecting and trying again *)

(** What is asked of an allocator for one size *)
Definition alloc_ok (alloc : J (option Z)) (s : Z) : Prop := forall j ts pages fc live, rep j ts pages fc live ->
  exists res j', alloc j = DONE res j' /\ allocated j live s res j'.

(** The result with a limited pressure: NULL only after a full collection *)
Definition gc_allocated (j : jmem_context) (live : gmap Z Z) (s : Z) (max_pressure : jmem_pressure_t) (o : outcome (option Z)) : Prop :=
  match o with
  | DONE res j' => allocated j live s res j' /\ (res = None -> max_pressure = JMEM_PRESSURE_HIGH /\ engine j' = mk_engine [] [])
  | FATAL => max_pressure = JMEM_PRESSURE_FULL
  | FAULT => False
  end.

Lemma gc_allocated_after j1 l1 j2 l2 s p o : gc_step j1 l1 j2 l2 -> gc_allocated j2 l2 s p o -> gc_allocated j1 l1 s p o.
Proof. intros H. destruct o as [res j'| |]; cbn; [intros [Ha Hn]; split; [eapply allocated_after; eassumption | assumption] | tauto | tauto]. Qed.

Lemma allocated_garbage j live s res j' : allocated j live s res j' -> engine j = mk_engine [] [] -> engine j' = mk_engine [] [].
Proof. intros (live1 & [(_ & Hu & Hh) _] & _) E. rewrite E in *. destruct (engine j') as [u h]. cbn in *. now destruct Hu as [->| ->], Hh as [->| ->]. Qed.

Lemma pressure_loop_ok alloc s max_pressure fuel : alloc_ok alloc s -> max_pressure = JMEM_PRESSURE_HIGH \/ max_pressure = JMEM_PRESSURE_FULL ->
  forall pressure j j1 live res, pressure_level max_pressure - pressure_level pressure <= Z.of_nat fuel -> pressure_level pressure <= 2 ->
  (res = None -> pressure = JMEM_PRESSURE_HIGH -> engine j1 = mk_engine [] []) ->
  allocated j live s res j1 -> gc_allocated j live s max_pressure (pressure_loop cfg low_pressure_runs fuel alloc pressure max_pressure res j1).
Proof.
  intros Ha Hmax. induction fuel as [|fuel IH]; intros pressure j j1 live res Hf Hlow Hnone Hres; (destruct res as [p|]; [split; [exact Hres | discriminate] |]); cbn [pressure_loop].
  - rewrite (proj2 (Z.ltb_ge _ _)) by lia. split; [exact Hres |]. intros _. destruct Hmax as [->| ->]; [| cbn in *; lia].
    split; [reflexivity |]. apply Hnone; [reflexivity |]. destruct pressure; cbn in *; lia || reflexivity.
  - destruct (Z.ltb_spec (pressure_level pressure) (pressure_level max_pressure)) as [Hlt|Hge].
    + destruct (decide (next_pressure pressure = JMEM_PRESSURE_FULL)) as [E|E].
      * rewrite E. cbn. destruct pressure, Hmax as [->| ->]; cbn in *; try discriminate; try lia; reflexivity.
      * destruct Hres as (live1 & Hg & ts & pages & fc & Hr & _).
        destruct (free_unused_spec (next_pressure pressure) j1 ts pages fc live1 Hr) as (j2 & ts2 & fc2 & live2 & Hd & Hr2 & Hg2 & Hu2).
        { destruct pressure; cbn in *; try tauto; congruence. }
        erewrite bind_done by exact Hd. destruct (Ha j2 ts2 pages fc2 live2 Hr2) as (res & j3 & Hd3 & Hres3). erewrite bind_done by exact Hd3.
        apply IH; [destruct pressure; cbn in *; try congruence; lia | destruct pressure; cbn in *; try congruence; lia | |].
        -- intros _ Hp. now apply (allocated_garbage _ _ _ _ _ Hres3), Hu2.
        -- eapply allocated_after; [exact Hg |]. eapply allocated_after; [exact Hg2 | exact Hres3].
    + split; [exact Hres |]. intros _. destruct Hmax as [->| ->]; [| destruct pressure; cbn in *; lia].
      split; [reflexivity |]. apply Hnone; [reflexivity |]. destruct pressure; cbn in *; lia || reflexivity.
Qed.

Lemma gc_and_alloc_ok alloc s max_pressure j ts pages fc live : alloc_ok (alloc s) s -> 0 < s ->
  max_pressure = JMEM_PRESSURE_HIGH \/ max_pressure = JMEM_PRESSURE_FULL -> rep j ts pages fc live ->
  gc_allocated j live s max_pressure (gc_and_alloc cfg low_pressure_runs alloc s max_pressure j).
Proof.
  intros Ha Hs Hmax H. unfold gc_and_alloc. rewrite (proj2 (Z.eqb_neq _ _)) by lia. erewrite bind_done by reflexivity. cbv zeta.
  destruct (jmem_heap_limit j <=? _).
  - destruct (free_unused_spec JMEM_PRESSURE_LOW j ts pages fc live H) as (j2 & ts2 & fc2 & live2 & Hd & Hr2 & Hg2 & _); [now left |].
    rewrite bind_assoc. erewrite bind_done by exact Hd. erewrite bind_done by reflexivity.
    destruct (Ha j2 ts2 pages fc2 live2 Hr2) as (res & j3 & Hd3 & Hres3). erewrite bind_done by exact Hd3.
    eapply gc_allocated_after; [exact Hg2 |]. apply pressure_loop_ok; try assumption; cbn; [destruct Hmax as [->| ->]; cbn; lia | lia | discriminate].
  - erewrite bind_done by reflexivity. destruct (Ha j ts pages fc live H) as (res & j3 & Hd3 & Hres3). erewrite bind_done by exact Hd3.
    apply pressure_loop_ok; try assumption; cbn; [destruct Hmax as [->| ->]; cbn; lia | lia | discriminate].
Qed.

(** *** New pages *)

Lemma link_cells_spec n : forall iter fuel j fc, cell_chain (memory j) (free_cells j) fc -> (n < fuel)%nat ->
  (forall k, 0 <= k < Z.of_nat n -> iter + JMEM_CELLOCATOR_CELL_SIZE * k ∉ fc) ->
  exists j' cells, link_cells fuel iter (iter + JMEM_CELLOCATOR_CELL_SIZE * (Z.of_nat n - 1)) j = DONE tt j'
    /\ cell_chain (memory j') (free_cells j') (cells ++ fc) /\ NoDup cells
    /\ (forall c, c ∈ cells <-> exists k, 0 <= k < Z.of_nat n /\ c = iter + JMEM_CELLOCATOR_CELL_SIZE * k)
    /\ (forall a, a ∉ cells -> memory j' !! a = memory j !! a)
    /\ j' = mk_jmem (memory j') (jmem_heap_list_skip_p j) (jmem_heap_allocated_size j) (jmem_heap_limit j) (cell_pages j) (free_cells j') (engine j).
Proof.
  induction n as [|n IH]; intros iter fuel j fc Hc Hf Hnot; (destruct fuel as [|fuel]; [lia |]); cbn [link_cells]; unfold JMEM_CELLOCATOR_CELL_SIZE in *.
  - rewrite (proj2 (Z.leb_gt _ _)) by lia. exists j, []. splits; try reflexivity; [assumption | constructor | | now destruct j].
    intros c. rewrite elem_of_nil. split; [tauto | intros (k & Hk & _); lia].
  - rewrite (proj2 (Z.leb_le _ _)) by lia. erewrite bind_done by reflexivity.
    set (j1 := mk_jmem _ _ _ _ _ _ _). replace (iter + 32 * (Z.of_nat (S n) - 1)) with (iter + 32 + 32 * (Z.of_nat n - 1)) by lia.
    assert (Hi : iter ∉ fc) by (replace iter with (iter + 32 * 0) by lia; apply Hnot; lia).
    destruct (IH (iter + 32) fuel j1 (iter :: fc)) as (j' & cells & Hd & Hch & Hnd & Hin & Hm & Hj).
    + split; [reflexivity |]. exists (free_cells j). split; [apply lookup_insert_eq |]. eapply cell_chain_frame; [| exact Hc].
      intros c Hcc. apply lookup_insert_ne. congruence.
    + lia.
    + intros k Hk. rewrite elem_of_cons. intros [E|E]; [lia |]. apply (Hnot (k + 1)); [lia |]. replace (iter + 32 * (k + 1)) with (iter + 32 + 32 * k) by lia. exact E.
    + exists j', (cells ++ [iter]). rewrite <- app_assoc. splits; [exact Hd | exact Hch | | | | exact Hj].
      * apply NoDup_app. splits; [assumption | | apply NoDup_singleton]. intros c Hcc Hce. apply list_elem_of_singleton in Hce as ->. apply Hin in Hcc as (k & Hk & E). lia.
      * intros c. rewrite elem_of_app, Hin, list_elem_of_singleton. split.
        -- intros [(k & Hk & ->)| ->]; [exists (k + 1); lia | exists 0; lia].
        -- intros (k & Hk & ->). destruct (Z.eq_dec k 0) as [->|Hk0]; [right; lia | left; exists (k - 1); lia].
      * intros a Ha. rewrite elem_of_app, list_elem_of_singleton in Ha. rewrite Hm by tauto. cbn. apply lookup_insert_ne. intros ->. apply Ha. now right.
Qed.

(** A block of the clients becomes a page of free cells *)
Lemma new_page_rep j ts pages fc live p j' cells : rep j ts pages fc (<[p := page_size cfg]> live) -> live !! p = None -> p ∉ (pending (engine j)).*1 ->
  (forall c, c ∈ cells <-> cell_of cfg p c) -> NoDup cells -> cell_chain (memory j') (free_cells j') (cells ++ fc) ->
  (forall a, a <> p -> a ∉ cells -> memory j' !! a = memory j !! a) ->
  memory j' !! p = Some (PAGE (mk_page (p + JMEM_CELLOCATOR_PAGE_HEADER_SIZE)
    (p + JMEM_CELLOCATOR_PAGE_HEADER_SIZE + JMEM_CELLOCATOR_CELL_SIZE * (vm_cell_count cfg - 1)) (cell_pages j))) ->
  j' = mk_jmem (memory j') (jmem_heap_list_skip_p j) (jmem_heap_allocated_size j) (jmem_heap_limit j) (Some p) (free_cells j') (engine j) ->
  rep j' ts (p :: pages) (cells ++ fc) live /\ keeps_live live j j'.
Proof.
  intros H Hn Hg Hcells Hnd Hchain Hmem Hp Hj. pose proof (rep_tiles cfg H) as Hok.
  assert (Halign : jmem_align (page_size cfg) = page_size cfg).
  { apply align_multiple; [pose proof (page_size_range _ Hcfg); pose proof (page_size_large _ Hcfg); unfold JMEM_CELLOCATOR_CELL_SIZE in *; lia | apply page_size_aligned]. }
  pose proof (page_size_large _ Hcfg) as Hlarge.
  assert (Hpl : <[p := page_size cfg]> live !! p = Some (page_size cfg)) by apply lookup_insert_eq.
  destruct (rep_live _ _ _ _ _ _ H p _ Hpl) as (_ & [(Hx & _)|(_ & Hpp & Hb)]); [lia |]. rewrite Halign in Hb.
  assert (Hrange : forall c, c ∈ cells -> p < c /\ c + JMEM_CELLOCATOR_CELL_SIZE <= p + page_size cfg).
  { intros c Hc. apply Hcells, cell_in_page in Hc. unfold JMEM_CELLOCATOR_PAGE_HEADER_SIZE in Hc. lia. }
  assert (Hother : forall q m a, blocks 0 ts !! q = Some m -> q <> p -> q <= a < q + m -> a <> p /\ a ∉ cells).
  { intros q m a Hq Hne Ha. destruct (blocks_disjoint 0 ts q m p _ Hok Hq Hb Hne) as [Hd|Hd]; unfold JMEM_CELLOCATOR_CELL_SIZE in *;
      (split; [lia | intros Hc; apply Hrange in Hc; lia]). }
  assert (Hpage : forall q a, q ∈ pages -> q <= a < q + page_size cfg -> a <> p /\ a ∉ cells).
  { intros q a Hq Ha. apply (Hother q (page_size cfg)); [now apply (rep_pages_blocks _ _ _ _ _ _ H) | congruence | assumption]. }
  assert (Hold : forall c, in_cells cfg pages c -> c ∉ cells).
  { intros c (q & Hq & Hc). apply (Hpage q c Hq). apply cell_in_page in Hc. unfold JMEM_CELLOCATOR_PAGE_HEADER_SIZE, JMEM_CELLOCATOR_CELL_SIZE in *. lia. }
  assert (Hlive : forall o s, live !! o = Some s -> o <> p /\ <[p := page_size cfg]> live !! o = Some s).
  { intros o s Ho. assert (o <> p) by congruence. split; [assumption | now rewrite lookup_insert_ne by congruence]. }
  split; [split |].
  - rewrite Hj. apply (rep_no_heap_write j ts); [apply H |]. intros o Ho. pose proof (node_not_in_block ts o Hok Ho) as Hnb. apply Hmem.
    + intros ->. apply Hnb. exists p, (page_size cfg). unfold JMEM_CELLOCATOR_CELL_SIZE in *. split; [assumption | lia].
    + intros Hc. apply Hrange in Hc. apply Hnb. exists p, (page_size cfg). unfold JMEM_CELLOCATOR_CELL_SIZE in *. split; [assumption | lia].
  - rewrite Hj. cbn [memory cell_pages page_chain]. split; [reflexivity |]. exists (cell_pages j). split; [exact Hp |].
    eapply page_chain_frame; [| apply H]. intros q Hq. destruct (Hpage q q Hq); [unfold JMEM_CELLOCATOR_CELL_SIZE in *; lia | now apply Hmem].
  - constructor; [assumption | apply H].
  - intros q Hq. apply elem_of_cons in Hq as [->|Hq]; [assumption | now apply (rep_pages_blocks _ _ _ _ _ _ H)].
  - exact Hchain.
  - apply NoDup_app. splits; [assumption | | apply H]. intros c Hc Hf. apply (rep_cells_in _ _ _ _ _ _ H) in Hf. now apply (Hold c).
  - intros c Hc. apply elem_of_app in Hc as [Hc|Hc].
    + exists p. split; [apply elem_of_cons; now left | now apply Hcells].
    + destruct (rep_cells_in _ _ _ _ _ _ H c Hc) as (q & Hq & Hcq). exists q. split; [apply elem_of_cons; now right | assumption].
  - intros o s Ho. destruct (Hlive o s Ho) as [Hne Ho']. destruct (rep_live _ _ _ _ _ _ H o s Ho') as (Hs & [(H1 & H2 & H3)|(H1 & H2 & H3)]); (split; [assumption |]).
    + left. splits; [assumption | | rewrite elem_of_app; intros [Hc|Hc]; [now apply (Hold o) | contradiction]].
      destruct H2 as (q & Hq & Hc). exists q. split; [apply elem_of_cons; now right | assumption].
    + right. splits; [assumption | rewrite elem_of_cons; tauto | assumption].
  - intros c (q & Hq & Hc). apply elem_of_cons in Hq as [->|Hq]; [left; apply elem_of_app; left; now apply Hcells |].
    destruct (rep_all_cells _ _ _ _ _ _ H c) as [Hf|Hf]; [now exists q | left; apply elem_of_app; now right |]. right.
    rewrite lookup_insert_ne in Hf; [assumption |]. intros <-. pose proof (cell_not_block cfg H p ltac:(now exists q)). congruence.
  - intros o n Ho. destruct (Z.eq_dec o p) as [->|Hne]; [left; apply elem_of_cons; now left |].
    destruct (rep_all_blocks _ _ _ _ _ _ H o n Ho) as [Hq|Hq]; [left; apply elem_of_cons; now right |]. right. now rewrite lookup_insert_ne in Hq by congruence.
  - rewrite Hj. apply H.
  - rewrite Hj. intros o s Ho. assert (o <> p) by (intros ->; apply Hg, list_elem_of_fmap; now exists (p, s)).
    apply (rep_unreachable _ _ _ _ _ _ H) in Ho. now rewrite lookup_insert_ne in Ho by congruence.
  - rewrite Hj. apply H.
  - intros o s a Ho Ha. destruct (Hlive o s Ho) as [Hne Ho'].
    assert (Hin : in_block ts a) by (eapply (live_slot_in_block cfg H); eassumption). apply Hmem.
    + intros ->. pose proof (align_extent s). destruct (rep_live _ _ _ _ _ _ H o s Ho') as (Hs & _). pose proof (align_extent (page_size cfg)).
      unfold JMEM_CELLOCATOR_CELL_SIZE in *. destruct (live_disjoint cfg H o s p _ Ho' Hpl Hne); lia.
    + intros Hc. apply Hrange in Hc. pose proof (align_extent s). destruct (rep_live _ _ _ _ _ _ H o s Ho') as (Hs & _). pose proof (align_extent (page_size cfg)).
      unfold JMEM_CELLOCATOR_CELL_SIZE in *. destruct (live_disjoint cfg H o s p _ Ho' Hpl Hne); lia.
Qed.

Lemma add_page_spec alloc j ts pages fc live : alloc_ok (alloc (page_size cfg)) (page_size cfg) -> rep j ts pages fc live ->
  exists res j', add_page cfg low_pressure_runs alloc j = DONE res j' /\ exists live1, gc_step j live j' live1 /\
    if res : bool then exists ts pages c fc, rep j' ts pages (c :: fc) live1
    else exists ts pages fc, rep j' ts pages fc live1 /\ exhausted ts (page_size cfg).
Proof.
  intros Ha H. pose proof (cell_count_range _ Hcfg) as Hcount. pose proof (page_size_range _ Hcfg) as Hrange.
  assert (Hpos : 0 < page_size cfg) by (pose proof (page_size_large _ Hcfg); unfold JMEM_CELLOCATOR_CELL_SIZE in *; lia).
  pose proof (gc_and_alloc_ok alloc _ JMEM_PRESSURE_HIGH j ts pages fc live Ha Hpos ltac:(now left) H) as Hga.
  unfold add_page. rewrite page_size_eq by assumption. destruct (gc_and_alloc cfg low_pressure_runs alloc (page_size cfg) JMEM_PRESSURE_HIGH j) as [res j1| |] eqn:E;
    [| discriminate Hga | destruct Hga]. erewrite bind_done by exact E. destruct Hga as [(live1 & Hg & Hres) _]. destruct res as [p|].
  2: { destruct Hres as (ts1 & pages1 & fc1 & Hr & He). exists false, j1. split; [reflexivity |]. exists live1. split; [assumption | now exists ts1, pages1, fc1]. }
  destruct Hres as (Hn & Hu & _ & ts1 & pages1 & fc1 & Hr). erewrite bind_done by reflexivity. cbv zeta.
  unfold page_size, JMEM_CELLOCATOR_PAGE_HEADER_SIZE, JMEM_CELLOCATOR_CELL_SIZE in Hrange.
  replace (u32 (JMEM_CELLOCATOR_CELL_SIZE * u32 (vm_cell_count cfg - 1))) with (JMEM_CELLOCATOR_CELL_SIZE * (vm_cell_count cfg - 1))
    by (unfold JMEM_CELLOCATOR_CELL_SIZE; rewrite (u32_small (vm_cell_count cfg - 1)), u32_small; unfold is_u32; lia).
  erewrite bind_done by reflexivity. set (page := PAGE _). set (j2 := mk_jmem _ _ _ _ _ _ _).
  pose proof (rep_tiles cfg Hr) as Hok. assert (Hpp : p ∉ pages1 /\ blocks 0 ts1 !! p = Some (page_size cfg)).
  { assert (Halign : jmem_align (page_size cfg) = page_size cfg) by (apply align_multiple; [pose proof (page_size_range _ Hcfg); lia | apply page_size_aligned]).
    destruct (rep_live _ _ _ _ _ _ Hr p (page_size cfg)) as (_ & [(Hx & _)|(_ & Hpp & Hb)]); [apply lookup_insert_eq | | rewrite Halign in Hb; now split].
    pose proof (page_size_large _ Hcfg). lia. }
  assert (Hfar : forall c, c ∈ fc1 -> c <> p /\ ~ cell_of cfg p c).
  { intros c Hc. destruct (rep_cells_in _ _ _ _ _ _ Hr c Hc) as (q & Hq & Hcq). assert (Hqp : p <> q) by (intros ->; tauto).
    split; [intros ->; pose proof (cell_not_block cfg Hr p ltac:(now exists q)); destruct Hpp; congruence |]. intros Hcp.
    apply Hqp. apply (cell_page_unique cfg Hr q c p _ Hq Hcq (proj2 Hpp)). apply cell_in_page in Hcp.
    unfold JMEM_CELLOCATOR_PAGE_HEADER_SIZE, JMEM_CELLOCATOR_CELL_SIZE in *. lia. }
  destruct (link_cells_spec (Z.to_nat (vm_cell_count cfg)) (p + JMEM_CELLOCATOR_PAGE_HEADER_SIZE) (S (Z.to_nat (vm_cell_count cfg))) j2 fc1)
    as (j3 & cells & Hd & Hch & Hnd & Hin & Hm & Hj); [| lia | |].
  { cbn. eapply cell_chain_frame; [| apply Hr]. intros c Hc. apply lookup_insert_ne. intros ->. now destruct (Hfar c Hc). }
  { intros k Hk Hc. apply (Hfar _ Hc). exists k. split; [lia | reflexivity]. }
  rewrite Z2Nat.id in * by lia. erewrite bind_done by exact Hd. erewrite bind_done by reflexivity. erewrite bind_done by reflexivity.
  set (j4 := mk_jmem _ _ _ _ _ _ _). exists true, j4. split; [reflexivity |]. exists live1.
  assert (Hpc : p ∉ cells) by (rewrite Hin; intros (k & Hk & E'); unfold JMEM_CELLOCATOR_PAGE_HEADER_SIZE, JMEM_CELLOCATOR_CELL_SIZE in *; lia).
  destruct (new_page_rep j1 ts1 pages1 fc1 live1 p j4 cells) as [Hr4 Hk4]; try assumption.
  - cbn. eapply cell_chain_frame; [| exact Hch]. intros c Hc. apply lookup_insert_ne. intros ->.
    apply elem_of_app in Hc as [Hc|Hc]; [contradiction | now destruct (Hfar c Hc)].
  - intros a Hap Hac. cbn. rewrite lookup_insert_ne by congruence. rewrite Hm by assumption. cbn. now apply lookup_insert_ne.
  - apply lookup_insert_eq.
  - unfold j4. rewrite Hj. reflexivity.
  - split; [eapply gc_step_trans; [exact Hg |]; split; [unfold j4; rewrite Hj; apply collected_refl | exact Hk4] |].
    destruct cells as [|c cells]; [exfalso | now exists ts1, (p :: pages1), c, (cells ++ fc1)].
    assert (Hc : p + JMEM_CELLOCATOR_PAGE_HEADER_SIZE ∈ @nil Z) by (apply Hin; exists 0; unfold JMEM_CELLOCATOR_CELL_SIZE; lia).
    now rewrite elem_of_nil in Hc.
Qed.

(** *** jmem_heap_alloc *)

Lemma heap_alloc_region depth s : 0 < s <= jmem_align s -> JMEM_CELLOCATOR_CELL_SIZE < jmem_align s -> alloc_ok (heap_alloc cfg low_pressure_runs (S depth) s) s.
Proof.
  intros Hs Hbig j ts pages fc live H. cbn [heap_alloc]. rewrite (proj2 (Z.leb_gt _ _)) by lia.
  destruct (region_alloc_spec j ts pages fc live s H Hs Hbig) as (res & j' & Hd & Ha & _). now exists res, j'.
Qed.

Lemma heap_alloc_ok s : 0 < s <= jmem_align s -> alloc_ok (jmem_heap_alloc cfg low_pressure_runs s) s.
Proof.
  intros Hs. destruct (Z.le_gt_cases (jmem_align s) JMEM_CELLOCATOR_CELL_SIZE) as [Hsmall|Hbig]; [| now apply heap_alloc_region].
  intros j ts pages fc live H. unfold jmem_heap_alloc. set (depth := 1%nat). cbn [heap_alloc]. rewrite (proj2 (Z.leb_le _ _)) by assumption.
  assert (Hpop : forall j1 live1 ts1 pages1 c fc1, rep j1 ts1 pages1 (c :: fc1) live1 -> gc_step j live j1 live1 ->
    exists j', jmem_cellocator_alloc j1 = DONE (Some c) j' /\ allocated j live s (Some c) j').
  { intros j1 live1 ts1 pages1 c fc1 Hr Hg. destruct (cell_alloc_some j1 ts1 pages1 c fc1 live1 s Hr Hs Hsmall) as (j' & Hd & Hr' & Hn & Hm & Hu).
    exists j'. split; [exact Hd |]. eapply allocated_after; [exact Hg |]. exists live1. split; [split; [rewrite Hu; apply collected_refl |] |].
    - intros o t a _ _. now rewrite Hm.
    - splits; [assumption | | intros Hbig; exfalso; lia | now exists ts1, pages1, fc1]. rewrite Hu. eapply unreachable_fresh; eassumption. }
  destruct fc as [|c fc]; [| destruct (Hpop j live ts pages c fc H (gc_step_refl _ _)) as (j' & Hd & Ha); erewrite bind_done by exact Hd; now exists (Some c), j'].
  rewrite (bind_done _ _ _ _ _ (cell_alloc_none j ts pages live H)).
  destruct (free_unused_spec JMEM_PRESSURE_LOW j ts pages [] live H) as (j2 & ts2 & fc2 & live2 & Hd2 & Hr2 & Hg2 & _); [now left |].
  erewrite bind_done by exact Hd2.
  destruct fc2 as [|c fc2]; [| destruct (Hpop j2 live2 ts2 pages c fc2 Hr2 Hg2) as (j' & Hd & Ha); erewrite bind_done by exact Hd; now exists (Some c), j'].
  rewrite (bind_done _ _ _ _ _ (cell_alloc_none j2 ts2 pages live2 Hr2)).
  pose proof (page_size_large _ Hcfg) as Hlarge. pose proof (page_size_range _ Hcfg) as Hrange.
  assert (Halign : jmem_align (page_size cfg) = page_size cfg) by (apply align_multiple; [unfold JMEM_CELLOCATOR_CELL_SIZE in *; lia | apply page_size_aligned]).
  destruct (add_page_spec (heap_alloc cfg low_pressure_runs depth) j2 ts2 pages [] live2) as (added & j3 & Hd3 & live3 & Hg3 & Hadd).
  { apply heap_alloc_region; rewrite Halign; unfold JMEM_CELLOCATOR_CELL_SIZE in *; lia. } { exact Hr2. }
  erewrite bind_done by exact Hd3. destruct added.
  - destruct Hadd as (ts3 & pages3 & c & fc3 & Hr3). destruct (Hpop j3 live3 ts3 pages3 c fc3 Hr3) as (j' & Hd & Ha); [eapply gc_step_trans; eassumption |]. now exists (Some c), j'.
  - destruct Hadd as (ts3 & pages3 & fc3 & Hr3 & He). exists None, j3. split; [reflexivity |]. exists live3. split; [eapply gc_step_trans; eassumption |].
    exists ts3, pages3, fc3. split; [assumption |]. unfold exhausted in *. rewrite (proj2 (Z.leb_le _ _)) by assumption.
    rewrite Halign, (proj2 (Z.leb_gt _ _)) in He by lia. exact He.
Qed.
End Operations.
