(* ===== verification/JmemRealloc.v ===== *)
(** * Reallocation: jmem_heap_realloc_block of src/jjs-core/jmem/jmem-heap.c

    The operations of Jmem on the block a client holds: it stays where it is,
    shrinks or grows in place, grows into the free region in front of it, or
    moves.  The contents up to the smaller of the two sizes are kept. *)
From Stdlib Require Import ZArith Lia.
From stdpp Require Import base gmap list.
From S2P Require Import Prelude JmemHeap Jmem.
#[local] Open Scope Z_scope.

Lemma align_twice n : 0 < n <= B64 - 8 -> jmem_align (jmem_align n) = jmem_align n /\ n <= jmem_align n <= B64 - 8.
Proof.
  intros Hn. destruct (align_bounds n Hn) as [Hb [k Hk]]. unfold JMEM_ALIGNMENT in Hk. assert (Hle : jmem_align n <= B64 - 8) by lia.
  split; [| lia]. unfold jmem_align at 1. unfold JMEM_ALIGNMENT, u64. rewrite Hk, Z.mod_small by lia. Z.div_mod_to_equations. lia.
Qed.

Section Realloc.
Context (cfg : jmem_config).
Hypothesis Hcfg : jmem_config_ok cfg.

Notation rep := (mem_rep cfg).
#[local] Existing Instance in_cells_dec.

(** *** Copies *)

Lemma foldr_copy (m : gmap Z slot) dst src l a :
  foldr (fun k m' => partial_alter (fun _ => m !! (src + 8 * Z.of_nat k)) (dst + 8 * Z.of_nat k) m') m l !! a
    = match decide (0 <= a - dst /\ (a - dst) mod 8 = 0 /\ Z.to_nat ((a - dst) / 8) ∈ l) with
      | left _ => m !! (src + (a - dst))
      | right _ => m !! a
      end.
Proof.
  induction l as [|k l IH]; cbn [foldr].
  - destruct (decide _) as [(_ & _ & H)|_]; [now apply elem_of_nil in H | reflexivity].
  - destruct (Z.eq_dec a (dst + 8 * Z.of_nat k)) as [->|Hne].
    + rewrite lookup_partial_alter_eq. replace (dst + 8 * Z.of_nat k - dst) with (Z.of_nat k * 8) by lia.
      rewrite Z.mod_mul, Z.div_mul, Nat2Z.id by lia. rewrite decide_True; [f_equal; lia |]. splits; try lia. apply elem_of_cons. now left.
    + rewrite lookup_partial_alter_ne, IH by congruence. apply decide_ext. rewrite elem_of_cons. split; [tauto |].
      intros (H0 & Hm & [E|H]); [exfalso | tauto]. apply Hne. Z.div_mod_to_equations. lia.
Qed.

(** The memory after a copy *)
Lemma memmove_spec dst src size j : 0 <= size -> exists m', memmove dst src size j = DONE tt (with_list m' (jmem_heap_list_skip_p j) j)
  /\ (forall k, 0 <= 8 * k < size -> m' !! (dst + 8 * k) = memory j !! (src + 8 * k))
  /\ (forall a, ~ (dst <= a < dst + size) -> m' !! a = memory j !! a).
Proof.
  intros Hs. eexists. split; [reflexivity |]. cbn beta. unfold slots_of. split.
  - intros k Hk. rewrite foldr_copy, decide_True; [f_equal; lia |]. replace (dst + 8 * k - dst) with (k * 8) by lia.
    rewrite Z.mod_mul, Z.div_mul by lia. splits; try lia. apply elem_of_seq. split; [lia |]. apply Nat2Z.inj_lt.
    rewrite Nat.add_0_l, !Z2Nat.id by (Z.div_mod_to_equations; lia). Z.div_mod_to_equations. lia.
  - intros a Ha. rewrite foldr_copy. destruct (decide _) as [(H0 & Hm & Hin)|_]; [exfalso | reflexivity]. apply elem_of_seq in Hin as [_ Hin].
    apply Nat2Z.inj_lt in Hin. rewrite Nat.add_0_l, !Z2Nat.id in Hin by (Z.div_mod_to_equations; lia). apply Ha. Z.div_mod_to_equations. lia.
Qed.

(** *** Growing in place, on tiles *)

Lemma blocks_union base ts1 ts2 : blocks base (ts1 ++ ts2) = blocks base ts1 ∪ blocks (base + total ts1) ts2.
Proof.
  revert base. induction ts1 as [|[n|n] ts1 IH]; intros base; cbn [app blocks total tile_size].
  - now rewrite (left_id_L ∅ (∪)), Z.add_0_r.
  - now rewrite IH, Z.add_assoc.
  - now rewrite IH, Z.add_assoc, insert_union_l.
Qed.

Lemma blocks_total_none pre : Forall tile_ok pre -> blocks 0 pre !! total pre = None.
Proof. intros Hok. destruct (blocks 0 pre !! total pre) as [n|] eqn:E; [| reflexivity]. apply blocks_bounds in E; [lia | assumption]. Qed.

Lemma blocks_block pre n post : Forall tile_ok pre -> blocks 0 (pre ++ USED n :: post) = <[total pre := n]> (blocks 0 pre ∪ blocks (total pre + n) post).
Proof. intros Hok. rewrite blocks_union, Z.add_0_l. cbn [blocks]. now rewrite insert_union_r by now apply blocks_total_none. Qed.

(** The block behind [pre] grows by [req] *)
Definition extend_tiles (pre : list tile) (n : Z) (post : list tile) (req : Z) : option (Z * list tile) :=
  match post with
  | FREE k :: post' => if req <=? k then Some (total pre, pre ++ USED (n + req) :: free_tile (k - req) post') else None
  | _ => match reverse pre with
         | FREE k :: rpre => if req <=? k then Some (total pre - req, reverse rpre ++ free_tile (k - req) (USED (n + req) :: post)) else None
         | _ => None
         end
  end.

Lemma extend_tiles_cases pre n post req p ts' : extend_tiles pre n post req = Some (p, ts') ->
  (exists k post', post = FREE k :: post' /\ req <= k /\ p = total pre /\ ts' = pre ++ USED (n + req) :: free_tile (k - req) post')
  \/ (exists k pre', pre = pre' ++ [FREE k] /\ req <= k /\ p = total pre - req /\ ts' = pre' ++ free_tile (k - req) (USED (n + req) :: post)).
Proof.
  unfold extend_tiles. intros E.
  assert (Hfront : match reverse pre with FREE k :: rpre => if req <=? k then Some (total pre - req, reverse rpre ++ free_tile (k - req) (USED (n + req) :: post)) else None | _ => None end
      = Some (p, ts') -> exists k pre', pre = pre' ++ [FREE k] /\ req <= k /\ p = total pre - req /\ ts' = pre' ++ free_tile (k - req) (USED (n + req) :: post)).
  { destruct (reverse pre) as [|[k|k] rpre] eqn:Er; try discriminate. destruct (Z.leb_spec req k); [| discriminate]. intros E'. injection E' as <- <-.
    exists k, (reverse rpre). splits; try reflexivity; [| assumption]. now rewrite <- (reverse_involutive pre), Er, reverse_cons. }
  destruct post as [|[k|k] post]; [right; now apply Hfront | | right; now apply Hfront].
  destruct (Z.leb_spec req k); [| discriminate]. injection E as <- <-. left. now exists k, post.
Qed.

(** The other blocks are not affected *)
Lemma extend_tiles_blocks pre n post req p ts' : Forall tile_ok (pre ++ USED n :: post) -> 0 < req -> extend_tiles pre n post req = Some (p, ts') ->
  blocks 0 ts' = <[p := n + req]> (delete (total pre) (blocks 0 (pre ++ USED n :: post))) /\ used ts' = used (pre ++ USED n :: post) + req
  /\ (p = total pre \/ blocks 0 (pre ++ USED n :: post) !! p = None).
Proof.
  intros Hok Hreq E. apply Forall_app in Hok as [Hpre Hpost]. apply Forall_cons in Hpost as [[Hn _] Hpost]. cbn in Hn.
  apply extend_tiles_cases in E as [(k & post' & -> & Hk & -> & ->)|(k & pre' & -> & Hk & -> & ->)].
  - rewrite !blocks_block, blocks_free_tile by assumption. cbn [blocks]. rewrite insert_delete_eq, insert_insert_eq.
    replace (total pre + (n + req) + (k - req)) with (total pre + n + k) by lia. splits; [reflexivity | | now left].
    rewrite !used_app. cbn [used]. rewrite used_free_tile. lia.
  - pose proof Hpre as Hpre0. apply Forall_app in Hpre as [Hpre' Hk0]. apply Forall_cons in Hk0 as [[Hkpos _] _]. cbn in Hkpos.
    rewrite blocks_block by assumption. rewrite !total_app. cbn [total tile_size]. rewrite Z.add_0_r.
    assert (Hside : forall q m, (blocks 0 pre' ∪ blocks (total pre' + k + n) post) !! q = Some m -> q < total pre' \/ total pre' + k + n <= q).
    { intros q m Hq. apply lookup_union_Some_raw in Hq as [Hq|[_ Hq]]; apply blocks_bounds in Hq; try assumption; lia. }
    rewrite (blocks_union 0 pre' [FREE k]). cbn [blocks]. rewrite (right_id_L ∅ (∪)). set (R := blocks 0 pre' ∪ _) in *.
    assert (Hnone : forall q, total pre' <= q < total pre' + k + n -> R !! q = None).
    { intros q Hq. destruct (R !! q) as [m|] eqn:E; [| reflexivity]. apply Hside in E. lia. }
    splits.
    + rewrite blocks_union, blocks_free_tile. cbn [blocks]. rewrite Z.add_0_l, delete_insert_id by (apply Hnone; lia).
      replace (total pre' + (k - req)) with (total pre' + k - req) by lia. replace (total pre' + k - req + (n + req)) with (total pre' + k + n) by lia.
      symmetry. apply insert_union_r. specialize (Hnone (total pre' + k - req) ltac:(lia)). now apply lookup_union_None in Hnone as [Hnone _].
    + rewrite !used_app, used_free_tile. cbn [used]. lia.
    + right. rewrite lookup_insert_ne by lia. apply Hnone. lia.
Qed.

(** *** Growing in place, in memory *)

Lemma separated_sizes pre k n k' n' post : separated (pre ++ FREE k :: USED n :: post) -> separated (pre ++ FREE k' :: USED n' :: post).
Proof. induction pre as [|[m|m] pre IH]; cbn; [tauto | | tauto]. destruct pre as [|[] pre]; cbn in *; tauto. Qed.

(** The region in front of a block gives its last [req] bytes to the block *)
Lemma shrink_region_tiles j pre k n post req ns q t next : list_ok cfg j ((pre ++ [FREE k]) ++ USED n :: post) -> 0 < req <= k -> (JMEM_ALIGNMENT | req) ->
  nodes pre = ns ++ [(q, t)] -> memory j !! total pre = Some (REGION (mk_region next k)) ->
  let m' := if req =? k then <[q := REGION (mk_region next t)]> (memory j) else <[total pre := REGION (mk_region next (k - req))]> (memory j) in
  let ts' := pre ++ free_tile (k - req) (USED (n + req) :: post) in
  list_ok cfg (with_list m' (if req =? k then q else total pre) j) ts' /\ (forall a, in_block ((pre ++ [FREE k]) ++ USED n :: post) a -> m' !! a = memory j !! a).
Proof.
  intros H Hreq Hd En Ho m' ts'. pose proof (list_nodes _ _ _ H) as Hseg. pose proof (list_tiles _ _ _ H) as Hok0. pose proof (nodes_NoDup _ Hok0) as Hnd.
  pose proof (list_separated _ _ _ H) as Hsep. pose proof (list_total _ _ _ H) as Htot.
  assert (Hnot : forall a, a ∈ (nodes ((pre ++ [FREE k]) ++ USED n :: post)).*1 -> ~ in_block ((pre ++ [FREE k]) ++ USED n :: post) a)
    by (intros a; now apply node_not_in_block).
  rewrite <- app_assoc in *. cbn [app] in *. rewrite nodes_app in Hnd, Hseg, Hnot. cbn [regions] in Hnd, Hseg, Hnot.
  set (l2 := regions (total pre + k + n) post) in *. pose proof Hok0 as Hok. apply Forall_app in Hok as [Hpre Hok]. apply Forall_cons in Hok as [[Hk Hdk] Hok].
  apply Forall_cons in Hok as [[Hn Hdn] Hpost]. cbn [tile_size] in *. pose proof (separated_app _ _ Hsep) as [Spre Spost]. cbn in Spost.
  assert (Hnodes : nodes ts' = ns ++ (q, t) :: (if req =? k then l2 else (total pre, k - req) :: l2)).
  { unfold ts'. rewrite nodes_app, En, <- app_assoc. cbn [app]. unfold free_tile. do 2 f_equal. destruct (Z.eqb_spec req k) as [->|Hne].
    - rewrite Z.sub_diag. cbn. unfold l2. f_equal. lia.
    - rewrite (proj2 (Z.eqb_neq _ _)) by lia. cbn. unfold l2. do 2 f_equal. lia. }
  rewrite En, <- app_assoc in Hseg. cbn [app] in Hseg. rewrite En, !fmap_app, <- app_assoc in Hnd.
  apply NoDup_app in Hnd as (_ & Hns & Hnd). apply NoDup_cons in Hnd as [Hql Hnd]. apply NoDup_cons in Hnd as [Hol _].
  apply seg_app in Hseg as (mid & Hsns & -> & nq & Hq & -> & nx & Ho' & Hl2). assert (nx = next) as -> by congruence.
  assert (Hqns : q ∉ ns.*1) by (intros Hin; apply (Hns q Hin), elem_of_cons; now left).
  assert (Hons : total pre ∉ ns.*1) by (intros Hin; apply (Hns _ Hin); cbn; apply elem_of_cons; right; apply elem_of_cons; now left).
  assert (Hqo : q <> total pre) by (intros ->; apply Hql, elem_of_cons; now left).
  split; [split |].
  - unfold ts'. apply Forall_app. split; [assumption |]. apply free_tile_ok; [| lia | now apply Z.divide_sub_r].
    constructor; [| assumption]. split; [cbn; lia | cbn; now apply Z.divide_add_r].
  - unfold ts', free_tile. destruct (k - req =? 0); [now apply separated_app_used |]. exact (separated_sizes pre k n (k - req) (n + req) post Hsep).
  - unfold ts'. rewrite <- Htot, !total_app, total_free_tile. cbn [total tile_size]. lia.
  - rewrite Hnodes. apply seg_app. exists q. unfold m'. cbn [memory with_list]. destruct (Z.eqb_spec req k) as [->|Hne].
    + split; [now apply seg_insert |]. split; [reflexivity |]. exists next. split; [apply lookup_insert_eq |]. apply seg_insert; [| assumption].
      intros Hin. apply Hql, elem_of_cons. now right.
    + split; [now apply seg_insert |]. split; [reflexivity |]. exists (total pre). rewrite lookup_insert_ne by congruence. split; [assumption |].
      split; [reflexivity |]. exists next. split; [apply lookup_insert_eq |]. now apply seg_insert.
  - rewrite Hnodes, fmap_app, elem_of_app. right. destruct (req =? k); apply elem_of_cons; [now left | right; apply elem_of_cons; now left].
  - intros a Ha. unfold m'. destruct (req =? k); apply lookup_insert_ne; intros <-; revert Ha; apply Hnot; rewrite fmap_app, elem_of_app;
      [left; rewrite En, fmap_app, elem_of_app; right; now apply list_elem_of_singleton | right; apply elem_of_cons; now left].
Qed.

Hypothesis Hheap : config_ok cfg.

(** What was stored before and after a try to extend a block *)
Definition extended (j : jmem_context) (o n old p : Z) (ts : list tile) (m' : gmap Z slot) : Prop :=
  (forall k, 0 <= 8 * k < old -> m' !! (p + 8 * k) = memory j !! (o + 8 * k))
  /\ (forall a, in_block ts a -> ~ (o <= a < o + n) -> m' !! a = memory j !! a).

Lemma extended_kept j pre n post old m' : Forall tile_ok (pre ++ USED n :: post) -> 0 <= old <= n ->
  (forall a, in_block (pre ++ USED n :: post) a -> m' !! a = memory j !! a) ->
  extended j (total pre) n old (total pre) (pre ++ USED n :: post) m'.
Proof.
  intros Hok Hold Hm. split; [| intros a Ha _; now apply Hm]. intros k Hk. apply Hm. exists (total pre), n. split; [| lia].
  apply Forall_app in Hok as [Hpre _]. rewrite blocks_block by assumption. apply lookup_insert_eq.
Qed.

Lemma extend_end j pre n k post old req : list_ok cfg j (pre ++ USED n :: FREE k :: post) -> 0 < req <= k -> (JMEM_ALIGNMENT | req) -> 0 <= old <= n ->
  exists m' skip, try_extend cfg (total pre) old n req j = DONE (Some (total pre, skip)) (with_list m' (jmem_heap_list_skip_p j) j)
    /\ list_ok cfg (with_list m' skip j) (pre ++ USED (n + req) :: free_tile (k - req) post)
    /\ extended j (total pre) n old (total pre) (pre ++ USED n :: FREE k :: post) m'.
Proof.
  intros H Hreq Hd Hold. destruct (list_around cfg Hheap _ _ _ _ H) as (ns & p & s & [En _ _ _ _ _] & Hseg & Hfind).
  assert (Htot : total (pre ++ [USED n]) = total pre + n) by (rewrite total_app; cbn; lia).
  assert (H1 : list_ok cfg j ((pre ++ [USED n]) ++ FREE k :: post)) by (rewrite <- app_assoc; exact H).
  assert (En1 : nodes (pre ++ [USED n]) = ns ++ [(p, s)]) by (rewrite nodes_app, En; apply app_nil_r).
  destruct (list_region cfg Hheap _ _ _ _ H1) as (ns' & q & t & next & En' & Ho & Hq & Hk & H0 & Hend & Hqo & Hqf).
  rewrite En1 in En'. apply app_inj_tail in En' as [<- E]. injection E as <- <-. rewrite Htot in *. unfold JMEM_HEAP_END_OF_LIST in Hend.
  destruct (carve_tiles cfg j (pre ++ [USED n]) k post req ns p s next H1 Hreq Hd En1 ltac:(now rewrite Htot)) as [Hl Hm]. cbv zeta in Hl, Hm. rewrite Htot in Hl, Hm.
  set (m' := carve _ _ _ _ _ _) in *. exists m', p. split; [| split; [now apply list_ok_merge |]].
  - unfold try_extend. erewrite bind_done by exact Hfind. erewrite bind_done by (eapply read_region_done, Hq). cbn [next_offset]. rewrite Z.eqb_refl.
    erewrite bind_done by (eapply read_region_done, Ho). cbn [region_size next_offset]. rewrite (proj2 (Z.leb_le _ _)) by lia. unfold m', carve. cbn [region_size next_offset].
    rewrite (Z.eqb_sym k req). destruct (Z.eqb_spec req k) as [E|E]; [now erewrite bind_done by (eapply set_next_done, Hq) |].
    rewrite bind_assoc. erewrite bind_done by reflexivity. rewrite (u32_small (k - req)), (u32_small (total pre + n + req)) by (unfold is_u32; lia).
    now erewrite bind_done by (eapply set_next_done; cbn; rewrite lookup_insert_ne by lia; exact Hq).
  - assert (Hkept : forall a, in_block (pre ++ USED n :: FREE k :: post) a -> m' !! a = memory j !! a).
    { intros a Ha. apply Hm. pose proof (list_tiles _ _ _ H1) as Hok. apply Forall_app in Hok as [Hpre Hpost].
      apply in_block_allocate; try assumption. rewrite <- app_assoc. exact Ha. }
    apply extended_kept; try assumption. apply H.
Qed.

Lemma nodes_last pre ns p s : Forall tile_ok pre -> nodes pre = ns ++ [(p, s)] -> p + s = total pre -> exists pre', pre = pre' ++ [FREE s] /\ p = total pre' /\ nodes pre' = ns.
Proof.
  intros Hok E Hps. destruct pre as [|t pre' _] using rev_ind.
  - destruct ns as [|? [|? ?]]; try discriminate. injection E as <- <-. unfold heap_first in *. cbn in Hps. lia.
  - rewrite nodes_app in E. apply Forall_app in Hok as [Hpre Ht]. apply Forall_cons in Ht as [[Ht _] _]. rewrite total_app in Hps.
    destruct t as [k|k]; cbn [regions total tile_size] in *.
    + apply app_inj_tail in E as [<- E]. injection E as <- <-. now exists pre'.
    + rewrite app_nil_r in E. assert (Hin : (p, s) ∈ nodes pre') by (rewrite E; apply elem_of_app; right; now apply list_elem_of_singleton).
      apply nodes_bounds in Hin; [| assumption]. pose proof (total_nonneg pre' Hpre). unfold heap_first in *. lia.
Qed.

Lemma nodes_free_last pre k : nodes (pre ++ [FREE k]) = nodes pre ++ [(total pre, k)].
Proof. now rewrite nodes_app. Qed.

Lemma list_ok_write j m skip ts m' : list_ok cfg (with_list m skip j) ts -> (forall a, ~ in_block ts a -> m' !! a = m !! a) -> list_ok cfg (with_list m' skip j) ts.
Proof.
  intros [H1 H2 H3 H4 H5] Hm. split; try assumption. cbn [memory with_list] in *. eapply seg_frame; [| exact H4]. intros o Ho. apply Hm. now apply node_not_in_block.
Qed.

Lemma head_address_range base ts : Forall tile_ok ts -> 0 <= base -> base + total ts < JMEM_HEAP_END_OF_LIST -> is_u32 (head_address (regions base ts)).
Proof.
  intros Hok Hb Ht. unfold JMEM_HEAP_END_OF_LIST in *. destruct (regions base ts) as [|[q t] l] eqn:E; cbn [head_address]; [unfold is_u32, JMEM_HEAP_END_OF_LIST; lia |].
  assert (Hq : (q, t) ∈ regions base ts) by (rewrite E; apply elem_of_cons; now left). apply regions_bounds in Hq; [unfold is_u32; lia | assumption].
Qed.

Lemma extend_tiles_front pre k n post req : (match post with FREE _ :: _ => False | _ => True end) -> req <= k ->
  extend_tiles (pre ++ [FREE k]) n post req = Some (total pre + k - req, pre ++ free_tile (k - req) (USED (n + req) :: post)).
Proof.
  intros Hpost Hk. unfold extend_tiles. rewrite reverse_snoc, reverse_involutive, total_app. cbn [total tile_size]. rewrite (proj2 (Z.leb_le _ _)), Z.add_0_r by lia.
  destruct post as [|[]]; [reflexivity | destruct Hpost | reflexivity].
Qed.

(** The first part: the list is updated *)
Lemma extend_front_list j pre k n post req : list_ok cfg j ((pre ++ [FREE k]) ++ USED n :: post) -> 0 < req <= k -> (JMEM_ALIGNMENT | req) ->
  (match post with FREE _ :: _ => False | _ => True end) ->
  exists m' skip, (forall old, try_extend cfg (total pre + k) old n req j
      = (memmove (total pre + k - req) (total pre + k) old;; mret (Some (total pre + k - req, skip))) (with_list m' (jmem_heap_list_skip_p j) j))
    /\ list_ok cfg (with_list m' skip j) (pre ++ free_tile (k - req) (USED (n + req) :: post))
    /\ (forall a, in_block ((pre ++ [FREE k]) ++ USED n :: post) a -> m' !! a = memory j !! a).
Proof.
  intros H Hreq Hd Hpost. destruct (list_around cfg Hheap _ _ _ _ H) as (ns0 & p & s & [En _ _ _ _ _] & Hseg & Hfind).
  assert (Htot : total (pre ++ [FREE k]) = total pre + k) by (rewrite total_app; cbn; lia). rewrite Htot in *.
  rewrite nodes_free_last in En. apply app_inj_tail in En as [<- E]. injection E as <- <-.
  assert (H1 : list_ok cfg j (pre ++ FREE k :: USED n :: post)) by (rewrite <- app_assoc in H; exact H).
  destruct (list_region cfg Hheap _ _ _ _ H1) as (ns & q & t & next & En & Ho & Hq & Hk & H0 & Hend & Hqo & Hqf).
  destruct (find_prev_tiles cfg Hheap _ _ _ H1) as (ns' & q' & t' & En' & Hfind').
  rewrite En in En'. apply app_inj_tail in En' as [<- E]. injection E as <- <-.
  destruct (shrink_region_tiles j pre k n post req ns q t next H Hreq Hd En Ho) as [Hl Hm]. cbv zeta in Hl, Hm.
  assert (Hnext : is_u32 next /\ next <> total pre + k + n).
  { apply seg_app in Hseg as (mid & _ & -> & nx & Ho' & Hseg). assert (nx = next) as -> by congruence. apply seg_head in Hseg as ->.
    pose proof (list_tiles _ _ _ H1) as Hok. pose proof (list_total _ _ _ H1) as Ht. pose proof (area_range cfg Hheap) as Harea. apply Forall_app in Hok as [_ Hok].
    apply Forall_cons in Hok as [_ Hok]. apply Forall_cons in Hok as [[Hn _] Hok]. cbn in Hn. rewrite total_app in Ht. cbn [total tile_size] in Ht.
    split; [apply head_address_range; [assumption | lia | lia] |]. unfold JMEM_HEAP_END_OF_LIST in *. pose proof (total_nonneg _ Hok).
    destruct post as [|[u|u] post]; [cbn; unfold JMEM_HEAP_END_OF_LIST; lia | destruct Hpost |]. apply Forall_cons in Hok as [[Hu _] Hok]. cbn in Hu. cbn [regions].
    cbn [total tile_size] in *. pose proof (head_address_above (total pre + k + n + u) post (total pre + k + n + 1) Hok ltac:(lia) ltac:(unfold JMEM_HEAP_END_OF_LIST; pose proof (total_nonneg _ Hok); lia)). lia. }
  exists (if req =? k then <[q := REGION (mk_region next t)]> (memory j) else <[total pre := REGION (mk_region next (k - req))]> (memory j)), (if req =? k then q else total pre).
  split; [| now split]. intros old. unfold try_extend. erewrite bind_done by exact Hfind. erewrite bind_done by (eapply read_region_done, Ho). cbn [next_offset region_size].
  rewrite (proj2 (Z.eqb_neq (total pre + k + n) next)), Z.eqb_refl, (proj2 (Z.leb_le req k)) by (try lia; intros ->; tauto).
  unfold JMEM_HEAP_END_OF_LIST in Hend. destruct (Z.eqb_spec req k) as [E|E].
  - rewrite bind_assoc. erewrite bind_done by exact Hfind'. rewrite (u32_small next) by apply Hnext. rewrite bind_assoc.
    erewrite bind_done by (eapply set_next_done, Hq). reflexivity.
  - rewrite bind_assoc. rewrite (u32_small (k - req)) by (unfold is_u32; lia). erewrite bind_done by (eapply set_size_done, Ho). reflexivity.
Qed.

Lemma extend_front j pre k n post old req : list_ok cfg j ((pre ++ [FREE k]) ++ USED n :: post) -> 0 < req <= k -> (JMEM_ALIGNMENT | req) -> 0 <= old <= n ->
  (match post with FREE _ :: _ => False | _ => True end) ->
  exists m' skip, try_extend cfg (total pre + k) old n req j = DONE (Some (total pre + k - req, skip)) (with_list m' (jmem_heap_list_skip_p j) j)
    /\ list_ok cfg (with_list m' skip j) (pre ++ free_tile (k - req) (USED (n + req) :: post))
    /\ extended j (total pre + k) n old (total pre + k - req) ((pre ++ [FREE k]) ++ USED n :: post) m'.
Proof.
  intros H Hreq Hd Hold Hpost. destruct (extend_front_list j pre k n post req H Hreq Hd Hpost) as (m1 & skip & Hdo & Hl & Hm).
  destruct (memmove_spec (total pre + k - req) (total pre + k) old (with_list m1 (jmem_heap_list_skip_p j) j)) as (m2 & Hmove & Hcopy & Hrest); [lia |].
  cbn [memory with_list] in Hcopy, Hrest. exists m2, skip. pose proof (list_tiles _ _ _ H) as Hok. pose proof (list_tiles _ _ _ Hl) as Hok'.
  assert (Htot : total (pre ++ [FREE k]) = total pre + k) by (rewrite total_app; cbn; lia).
  destruct (extend_tiles_blocks _ _ _ _ _ _ Hok (proj1 Hreq) (extend_tiles_front pre k n post req Hpost (proj2 Hreq))) as (Hb & _ & Hp). rewrite Htot in *.
  set (p := total pre + k - req) in *. set (ts' := pre ++ free_tile _ _) in *.
  assert (Hpb : blocks 0 ts' !! p = Some (n + req)) by (rewrite Hb; apply lookup_insert_eq).
  splits.
  - rewrite Hdo. now erewrite bind_done by exact Hmove.
  - eapply list_ok_write; [exact Hl |]. intros a Ha. apply Hrest. intros Hin. apply Ha. exists p, (n + req). split; [assumption | lia].
  - split; [intros i Hi; rewrite Hcopy by assumption; apply Hm; exists (total pre + k), n; split; [| lia] |].
    { pose proof Hok as Hok0. apply Forall_app in Hok0 as [Hpre0 _]. rewrite blocks_block, Htot by assumption. apply lookup_insert_eq. }
    intros a (b & m & Hbm & Ha) Hout. rewrite Hrest; [apply Hm; now exists b, m |]. intros Hin.
    assert (Hbo : b <> total pre + k).
    { intros ->. rewrite blocks_block, Htot, lookup_insert_eq in Hbm; [injection Hbm as <-; contradiction |]. now apply Forall_app in Hok as [? _]. }
    assert (Hbp : b <> p) by (intros ->; destruct Hp; congruence).
    assert (Hb' : blocks 0 ts' !! b = Some m) by (rewrite Hb, lookup_insert_ne, lookup_delete_ne by congruence; assumption).
    destruct (blocks_disjoint 0 ts' b m p _ Hok' Hb' Hpb Hbp); lia.
Qed.

Lemma around_next j pre n post ns p s : list_ok cfg j (pre ++ USED n :: post) -> 
  seg (memory j) heap_first (ns ++ (p, s) :: regions (total pre + n) post) JMEM_HEAP_END_OF_LIST ->
  exists next, memory j !! p = Some (REGION (mk_region next s)) /\ (total pre + n = next <-> match post with FREE _ :: _ => True | _ => False end)
    /\ (total pre + n = next -> forall k post', post = FREE k :: post' -> exists next', memory j !! next = Some (REGION (mk_region next' k))).
Proof.
  intros H Hseg. apply seg_app in Hseg as (mid & _ & -> & next & Hp & Hseg). exists next. split; [assumption |].
  pose proof (list_tiles _ _ _ H) as Hok. pose proof (list_total _ _ _ H) as Ht. pose proof (area_range cfg Hheap) as Harea. unfold JMEM_HEAP_END_OF_LIST in Harea.
  apply Forall_app in Hok as [Hpre Hok]. apply Forall_cons in Hok as [[Hn _] Hok]. cbn in Hn. rewrite total_app in Ht. cbn [total tile_size] in Ht.
  pose proof (total_nonneg _ Hok). pose proof (total_nonneg _ Hpre). destruct post as [|[u|u] post]; cbn [regions] in Hseg.
  - cbn in Hseg. subst next. split; [| discriminate]. cbn [total] in Ht. unfold JMEM_HEAP_END_OF_LIST. split; [lia | tauto].
  - destruct Hseg as (-> & next' & Hm & _). split; [tauto |]. intros _ k post' E. injection E as -> ->. now exists next'.
  - split; [| discriminate]. apply seg_head in Hseg as ->. apply Forall_cons in Hok as [[Hu _] Hok]. cbn in Hu. cbn [total tile_size] in *.
    pose proof (total_nonneg _ Hok).
    pose proof (head_address_above (total pre + n + u) post (total pre + n + 1) Hok ltac:(lia) ltac:(unfold JMEM_HEAP_END_OF_LIST; lia)).
    split; [lia | tauto].
Qed.

Lemma try_extend_spec j pre n post old req : list_ok cfg j (pre ++ USED n :: post) -> 0 < req -> (JMEM_ALIGNMENT | req) -> 0 <= old <= n ->
  match extend_tiles pre n post req with
  | None => try_extend cfg (total pre) old n req j = DONE None j
  | Some (p, ts') => exists m' skip, try_extend cfg (total pre) old n req j = DONE (Some (p, skip)) (with_list m' (jmem_heap_list_skip_p j) j)
      /\ list_ok cfg (with_list m' skip j) ts' /\ extended j (total pre) n old p (pre ++ USED n :: post) m'
  end.
Proof.
  intros H Hreq Hd Hold. destruct (list_around cfg Hheap _ _ _ _ H) as (ns & p & s & [En Hp _ _ _ _] & Hseg & Hfind).
  destruct (around_next j pre n post ns p s H Hseg) as (next & Hm & Hend & Hregion). pose proof (list_tiles _ _ _ H) as Hok. apply Forall_app in Hok as [Hpre _].
  assert (Hstart : try_extend cfg (total pre) old n req j = mbind (fun prev => _) (read_region p) j) by (unfold try_extend; now erewrite bind_done by exact Hfind).
  assert (Hfree : (exists k post', post = FREE k :: post') \/ match post with FREE _ :: _ => False | _ => True end) by (destruct post as [|[k|k] post]; [now right | left; now exists k, post | now right]).
  destruct Hfree as [(k & post' & ->)|Hpost].
  - cbn [extend_tiles]. destruct (Z.leb_spec req k) as [Hk|Hk]; [now apply extend_end |].
    destruct (Hregion ltac:(now apply Hend) k post' eq_refl) as [next' Hnext]. rewrite Hstart. erewrite bind_done by (eapply read_region_done, Hm).
    cbn [next_offset]. rewrite (proj2 (Z.eqb_eq _ _)) by now apply Hend. erewrite bind_done by (eapply read_region_done, Hnext). cbn [region_size].
    now rewrite (proj2 (Z.leb_gt _ _)).
  - assert (Hne : total pre + n <> next) by (intros E; apply Hend in E; destruct post as [|[]]; tauto). destruct (Z.eq_dec (p + s) (total pre)) as [E|E].
    + destruct (nodes_last pre ns p s Hpre En E) as (pre' & -> & -> & _). rewrite total_app in *. cbn [total tile_size] in *. rewrite Z.add_0_r in *.
      destruct (Z.le_gt_cases req s) as [Hs|Hs].
      * rewrite extend_tiles_front by assumption. now apply extend_front.
      * assert (Hnone : extend_tiles (pre' ++ [FREE s]) n post req = None).
        { unfold extend_tiles. rewrite reverse_snoc, (proj2 (Z.leb_gt _ _)) by lia. now destruct post as [|[]]. }
        rewrite Hnone, Hstart. erewrite bind_done by (eapply read_region_done, Hm). cbn [next_offset region_size].
        now rewrite (proj2 (Z.eqb_neq _ _)), Z.eqb_refl, (proj2 (Z.leb_gt _ _)) by assumption.
    + assert (Hnone : extend_tiles pre n post req = None).
      { unfold extend_tiles. destruct pre as [|t pre' _] using rev_ind; [now destruct post as [|[]] |]. rewrite reverse_snoc. destruct t as [k|k]; [exfalso | now destruct post as [|[]]].
        rewrite nodes_free_last in En. apply app_inj_tail in En as [_ En]. injection En as <- <-. apply E. rewrite total_app. cbn. lia. }
      rewrite Hnone, Hstart. erewrite bind_done by (eapply read_region_done, Hm). cbn [next_offset region_size].
      now rewrite !(proj2 (Z.eqb_neq _ _)) by assumption.
Qed.

(** *** Clients write into their blocks *)

Section State.
Context {r : option (Z * Z)} {j : jmem_context} {ts : list tile} {pages fc : list Z} {live : gmap Z Z}.
Hypothesis H : rep r j ts pages fc live.

Lemma rep_write o s m' : live !! o = Some s -> (forall a, ~ (o <= a < o + s) -> m' !! a = memory j !! a) ->
  rep r (with_list m' (jmem_heap_list_skip_p j) j) ts pages fc live
  /\ keeps_live (delete o live) j (with_list m' (jmem_heap_list_skip_p j) j).
Proof.
  intros Hl Hm. pose proof (rep_tiles cfg H) as Hok. destruct (rep_live _ _ _ _ _ _ H o s Hl) as (Hs & C).
  assert (Hin : forall a, o <= a < o + s -> in_block ts a) by (intros a Ha; eapply (live_slot_in_block cfg H); eassumption).
  assert (Hpage : forall p, p ∈ pages -> ~ (o <= p < o + s)).
  { intros p Hp Ha. pose proof (rep_pages_blocks _ _ _ _ _ _ H p Hp) as Hpb. destruct C as [(C1 & (q & Hq & Hc) & _)|(C1 & C2 & C3)].
    - pose proof (rep_pages_blocks _ _ _ _ _ _ H q Hq) as Hqb. pose proof (blocks_bounds 0 ts p _ Hok Hpb). apply cell_in_page in Hc.
      destruct (Z.eq_dec p q) as [->|Hne]; unfold JMEM_CELLOCATOR_PAGE_HEADER_SIZE, JMEM_CELLOCATOR_CELL_SIZE in *; [lia |].
      destruct (blocks_disjoint 0 ts p _ q _ Hok Hpb Hqb Hne); lia.
    - pose proof (blocks_bounds 0 ts p _ Hok Hpb). assert (Hne : p <> o) by congruence. destruct (blocks_disjoint 0 ts p _ o _ Hok Hpb C3 Hne); lia. }
  assert (Hcell : forall c, c ∈ fc -> ~ (o <= c < o + s)).
  { intros c Hc Ha. pose proof (rep_cells_in _ _ _ _ _ _ H c Hc) as Hcc. destruct C as [(C1 & C2 & C3)|(C1 & C2 & C3)].
    - assert (Hne : c <> o) by congruence. unfold JMEM_CELLOCATOR_CELL_SIZE in *. destruct (cells_apart cfg H c o Hcc C2 Hne); unfold JMEM_CELLOCATOR_CELL_SIZE in *; lia.
    - destruct Hcc as (q & Hq & Hcq). apply C2. now rewrite (cell_page_unique cfg H q c o _ Hq Hcq C3) by lia. }
  split; [split; try apply H |].
  - apply (rep_no_heap_write cfg r j ts); [apply H |]. intros a Ha. apply Hm. intros Hoa. now apply (node_not_in_block ts a Hok Ha), Hin.
  - eapply page_chain_frame; [| apply H]. intros p Hp. now apply Hm, Hpage.
  - eapply cell_chain_frame; [| apply H]. intros c Hc. now apply Hm, Hcell.
  - intros q t a Hq Ha. apply lookup_delete_Some in Hq as [Hne Hq]. apply Hm. intros Hoa. destruct (rep_live _ _ _ _ _ _ H q t Hq) as (Ht & _).
    pose proof (align_extent s). pose proof (align_extent t). destruct (live_disjoint cfg H o s q t Hl Hq Hne); lia.
Qed.

(** The client asks for another size that fits the same block *)
Lemma rep_relabel o s s' : live !! o = Some s -> o ∉ (pending (engine j)).*1 -> (stored cfg ts pages fc o s -> stored cfg ts pages fc o s') ->
  rep r j ts pages fc (<[o := s']> live).
Proof.
  intros Hl Hg Hst. assert (Hsome : forall q, is_Some (live !! q) -> is_Some (<[o := s']> live !! q)) by (intros q Hq; rewrite lookup_insert_is_Some'; tauto).
  split; try apply H.
  - intros q t Hq. apply lookup_insert_Some in Hq as [[<- <-]|[_ Hq]]; [now apply Hst, (rep_live _ _ _ _ _ _ H) | now apply (rep_live _ _ _ _ _ _ H)].
  - intros c Hc. destruct (rep_all_cells _ _ _ _ _ _ H c Hc); [now left | right; now apply Hsome].
  - intros q n Hq. destruct (rep_all_blocks _ _ _ _ _ _ H q n Hq); [now left | right; now apply Hsome].
  - intros q t Hq. rewrite lookup_insert_ne; [now apply (rep_unreachable _ _ _ _ _ _ H) |]. intros <-. apply Hg, list_elem_of_fmap. now exists (o, t).
Qed.

(** A block of the heap gets another size, and perhaps another place *)
Lemma rep_resize j' ts' o s p s' : live !! o = Some s -> ~ in_cells cfg pages o -> o ∉ (pending (engine j)).*1 -> heap_ok cfg r j' ts' ->
  blocks 0 ts' = <[p := jmem_align s']> (delete o (blocks 0 ts)) -> 0 < s' <= jmem_align s' -> JMEM_CELLOCATOR_CELL_SIZE < jmem_align s' ->
  (p = o \/ blocks 0 ts !! p = None) ->
  (forall a, in_block ts a -> ~ (o <= a < o + jmem_align s) -> memory j' !! a = memory j !! a) ->
  cell_pages j' = cell_pages j -> free_cells j' = free_cells j -> engine j' = engine j ->
  rep r j' ts' pages fc (<[p := s']> (delete o live)) /\ keeps_live (delete o live) j j' /\ delete o live !! p = None.
Proof.
  intros Hl Hc Hg Hh Hb Hs' Hbig' Hp Hm Ep Ef Eu. pose proof (rep_tiles cfg H) as Hok. pose proof (list_tiles _ _ _ (heap_list _ _ _ _ Hh)) as Hok'.
  destruct (live_block cfg r _ _ _ _ _ _ _ H Hl Hc) as (Hs & Hbig & Hop & Hob).
  assert (Hpo : p ∉ pages) by (intros Hpp; destruct Hp as [->|Hn]; [contradiction | rewrite (rep_pages_blocks _ _ _ _ _ _ H p Hpp) in Hn; discriminate]).
  assert (Hpages : forall q, q ∈ pages -> blocks 0 ts' !! q = blocks 0 ts !! q).
  { intros q Hq. rewrite Hb, lookup_insert_ne, lookup_delete_ne; [reflexivity | |]; intros ->; contradiction. }
  assert (Hpc : ~ in_cells cfg pages p).
  { intros (q & Hq & Hcq). pose proof (rep_pages_blocks _ _ _ _ _ _ H q Hq) as Hqb. rewrite <- Hpages in Hqb by assumption.
    assert (Hpb : blocks 0 ts' !! p = Some (jmem_align s')) by (rewrite Hb; apply lookup_insert_eq). apply cell_in_page in Hcq.
    unfold JMEM_CELLOCATOR_PAGE_HEADER_SIZE, JMEM_CELLOCATOR_CELL_SIZE in *.
    assert (Hqp : q <> p) by (intros ->; contradiction). destruct (blocks_disjoint 0 ts' q _ p _ Hok' Hqb Hpb Hqp); lia. }
  assert (Hnone : delete o live !! p = None).
  { destruct Hp as [->|Hn]; [apply lookup_delete_eq |]. destruct (delete o live !! p) as [t|] eqn:E; [exfalso | reflexivity].
    apply lookup_delete_Some in E as [_ E]. destruct (live_block cfg r _ _ _ _ _ _ _ H E Hpc) as (_ & _ & _ & E'). congruence. }
  splits; [| | exact Hnone].
  - eapply (rep_change cfg r Hcfg r j j' ts ts'); try exact H; try assumption; rewrite ?Eu; try apply H.
    + intros q a Hq Ha. apply Hm; [exists q, (page_size cfg); split; [now apply (rep_pages_blocks _ _ _ _ _ _ H) | assumption] |]. intros Hoa.
      assert (Hqo : q <> o) by congruence. destruct (blocks_disjoint 0 ts q _ o _ Hok (rep_pages_blocks _ _ _ _ _ _ H q Hq) Hob Hqo); lia.
    + intros c Hcc. rewrite lookup_insert_ne, lookup_delete_ne; [reflexivity | |]; intros ->; contradiction.
    + intros q t Hq Ht. rewrite Hb. apply lookup_insert_Some in Ht as [[<- <-]|[Hne Ht]]; [splits; try assumption; try lia; apply lookup_insert_eq |].
      apply lookup_delete_Some in Ht as [Hqo Ht]. destruct (live_block cfg r _ _ _ _ _ _ _ H Ht Hq) as (? & ? & ? & ?).
      splits; try assumption; try lia. now rewrite lookup_insert_ne, lookup_delete_ne by congruence.
    + intros q n. rewrite Hb, !lookup_insert_Some, lookup_delete_Some. intros [[<- _]|(Hne & Hqo & Hq)]; [right; rewrite lookup_insert_eq; now exists s' |].
      rewrite lookup_insert_ne, lookup_delete_ne by congruence. now apply (rep_all_blocks _ _ _ _ _ _ H q n).
    + intros q t Hq. pose proof (rep_unreachable _ _ _ _ _ _ H q t Hq) as Hlq.
      assert (Hqo : q <> o) by (intros ->; apply Hg, list_elem_of_fmap; now exists (o, t)).
      rewrite lookup_insert_ne, lookup_delete_ne; [assumption | congruence |]. intros ->. rewrite lookup_delete_ne in Hnone by congruence. congruence.
  - intros q t a Hq Ha. apply lookup_delete_Some in Hq as [Hne Hq]. apply Hm; [eapply (live_slot_in_block cfg H); eassumption |]. intros Hoa.
    pose proof (align_extent s). pose proof (align_extent t). destruct (rep_live _ _ _ _ _ _ H q t Hq) as (Ht & _). destruct (live_disjoint cfg H o s q t Hl Hq Hne); lia.
Qed.
End State.

(** ** The result of a reallocation *)

(** A block of size [new] with the contents of the old one; NULL only where the
    new block is a cell; the end of the process only where the block grows *)
Definition reallocated (j : jmem_context) (live : gmap Z Z) (ptr s new : Z) (o : outcome (option Z)) : Prop :=
  match o with
  | DONE res j' => exists live1, collected (engine j) live (engine j') live1 /\ keeps_live (delete ptr live1) j j' /\
      match res with
      | Some p => delete ptr live1 !! p = None /\ p ∉ (pending (engine j')).*1
          /\ (forall k, 0 <= 8 * k < Z.min s new -> memory j' !! (p + 8 * k) = memory j !! (ptr + 8 * k))
          /\ exists ts pages fc, rep None j' ts pages fc (<[p := new]> (delete ptr live1))
      | None => jmem_align new <= JMEM_CELLOCATOR_CELL_SIZE < jmem_align s /\ exists ts pages fc, rep None j' ts pages fc (delete ptr live1)
      end
  | FATAL => jmem_align s < jmem_align new
  | FAULT => False
  end.

Lemma delete_subset (live1 live2 : gmap Z Z) ptr : (forall o s, live2 !! o = Some s -> live1 !! o = Some s) ->
  forall o s, delete ptr live2 !! o = Some s -> delete ptr live1 !! o = Some s.
Proof. intros H o s. rewrite !lookup_delete_Some. intros [Hne Ho]. split; [assumption | now apply H]. Qed.

(** A collection in front of the reallocation *)
Lemma reallocated_after j live j1 live1 ptr s new o : gc_step j live j1 live1 -> live !! ptr = Some s -> ptr ∉ (pending (engine j)).*1 ->
  reallocated j1 live1 ptr s new o -> reallocated j live ptr s new o.
Proof.
  intros [Hc Hk] Hl Hg. destruct o as [res j'| |]; cbn; [| tauto | tauto]. intros (live2 & Hc2 & Hk2 & Hres). exists live2.
  destruct (collected_keeps _ _ _ _ ptr Hc Hg) as [Hl1 _]. rewrite Hl in Hl1.
  split; [eapply collected_trans; eassumption |]. split.
  - eapply keeps_live_trans; [| | exact Hk2]; [apply delete_subset; intros q t; eapply collected_subset, Hc2 |].
    intros q t a Hq Ha. apply lookup_delete_Some in Hq as [_ Hq]. now apply (Hk q t a).
  - destruct res as [p|]; [| exact Hres]. destruct Hres as (Hn & Hu & Hcopy & Hr). splits; try assumption.
    intros k Hk'. rewrite Hcopy by assumption. apply (Hk ptr s); [assumption | lia].
Qed.

Section Cases.
Context {j : jmem_context} {ts : list tile} {pages fc : list Z} {live : gmap Z Z} (ptr s new : Z).
Hypothesis H : rep None j ts pages fc live.
Hypothesis Hl : live !! ptr = Some s.
Hypothesis Hg : ptr ∉ (pending (engine j)).*1.
Hypothesis Hnew : 0 < new <= jmem_align new.

(** The block stays *)
Lemma realloc_stay : (stored cfg ts pages fc ptr s -> stored cfg ts pages fc ptr new) -> reallocated j live ptr s new (DONE (Some ptr) j).
Proof.
  intros Hst. exists live. split; [apply collected_refl |]. split; [apply keeps_live_refl |]. splits; [apply lookup_delete_eq | assumption | reflexivity |].
  exists ts, pages, fc. rewrite insert_delete_eq. eapply rep_relabel; eassumption.
Qed.

Hypothesis Hc : ~ in_cells cfg pages ptr.

(** A block of the heap changes in place, or into the region in front of it *)
Lemma realloc_in_heap j' ts' p : heap_ok cfg None j' ts' -> blocks 0 ts' = <[p := jmem_align new]> (delete ptr (blocks 0 ts)) ->
  JMEM_CELLOCATOR_CELL_SIZE < jmem_align new -> (p = ptr \/ blocks 0 ts !! p = None) ->
  (forall a, in_block ts a -> ~ (ptr <= a < ptr + jmem_align s) -> memory j' !! a = memory j !! a) ->
  (forall k, 0 <= 8 * k < Z.min s new -> memory j' !! (p + 8 * k) = memory j !! (ptr + 8 * k)) ->
  cell_pages j' = cell_pages j -> free_cells j' = free_cells j -> engine j' = engine j ->
  reallocated j live ptr s new (DONE (Some p) j').
Proof.
  intros Hh Hb Hbig Hp Hm Hcopy Ep Ef Eu.
  destruct (rep_resize H j' ts' ptr s p new Hl Hc Hg Hh Hb Hnew Hbig Hp Hm Ep Ef Eu) as (Hr & Hk & Hn).
  exists live. split; [rewrite Eu; apply collected_refl |]. split; [exact Hk |]. splits; [exact Hn | | exact Hcopy | now exists ts', pages, fc].
  intros Hin. rewrite Eu in Hin. apply list_elem_of_fmap in Hin as ([q t] & -> & Hin). pose proof (rep_unreachable _ _ _ _ _ _ H q t Hin) as Hq. cbn in Hn.
  rewrite lookup_delete_ne in Hn; [congruence |]. intros ->. apply Hg, list_elem_of_fmap. now exists (q, t).
Qed.

(** The block shrinks in place *)
Lemma realloc_shrink : JMEM_CELLOCATOR_CELL_SIZE < jmem_align new < jmem_align s ->
  reallocated j live ptr s new ((prev_p ← jmem_heap_find_prev cfg ptr; jmem_heap_insert_block (ptr + jmem_align new) prev_p (jmem_align s - jmem_align new);;
    account_release cfg (jmem_align s - jmem_align new);; mret (Some ptr)) j).
Proof.
  intros [Hbig Hless]. destruct (live_block cfg None _ _ _ _ _ _ _ H Hl Hc) as (Hs & _ & _ & Hb). pose proof (rep_heap _ _ _ _ _ _ H) as [HL Hacc _].
  destruct (blocks_split 0 ts ptr _ Hb) as (pre & post & Ets & Eptr). rewrite Z.add_0_l in Eptr. rewrite Ets in HL, Hacc, Hb.
  set (n := jmem_align s) in *. set (n1 := jmem_align new) in *.
  assert (Hd1 : (JMEM_ALIGNMENT | n1)) by apply Z.divide_factor_r. unfold JMEM_CELLOCATOR_CELL_SIZE in Hbig.
  destruct (list_around cfg Hheap _ _ _ _ HL) as (ns & p & t & [En _ _ _ _ _] & _ & Hfind). rewrite <- Eptr in Hfind. erewrite bind_done by exact Hfind.
  assert (H1 : list_ok cfg j ((pre ++ [USED n1]) ++ USED (n - n1) :: post)) by (apply list_ok_split; [assumption | lia | lia |]; now replace (n1 + (n - n1)) with n by lia).
  destruct (list_around cfg Hheap _ _ _ _ H1) as (ns' & p' & t' & Har & _ & _). pose proof (around_nodes _ _ _ _ _ _ Har) as En'.
  rewrite nodes_app, En in En'. cbn [regions] in En'. rewrite app_nil_r in En'. apply app_inj_tail in En' as [<- E]. injection E as <- <-.
  destruct (insert_tiles cfg Hheap _ _ _ _ _ _ _ H1 Har) as (m' & Hins & HL' & Hk).
  assert (Htot : total (pre ++ [USED n1]) = total pre + n1) by (rewrite total_app; cbn; lia). rewrite Htot, <- Eptr in Hins. erewrite bind_done by exact Hins.
  set (ts' := coalesce _) in *. pose proof (list_tiles _ _ _ HL) as Hok. pose proof Hok as Hok'. apply Forall_app in Hok' as [Hpre Hpost].
  assert (Hused : used ts' = used (pre ++ USED n :: post) - (n - n1)) by (unfold ts'; rewrite used_coalesce, !used_app; cbn [used]; lia).
  pose proof (list_used_range cfg Hheap _ _ HL) as Hu. pose proof (used_bounds ts' (list_tiles _ _ _ HL')) as Hu'.
  destruct (account_release_spec cfg Hheap None (with_list m' p j) (used (pre ++ USED n :: post)) (n - n1) Hacc) as (j' & Hd & Hacc' & Ej); [lia | cbn [reserve]; lia | lia |].
  erewrite bind_done by exact Hd.
  assert (Hbl : blocks 0 ts' = <[total pre := n1]> (delete (total pre) (blocks 0 (pre ++ USED n :: post)))).
  { unfold ts'. rewrite blocks_coalesce, <- app_assoc. cbn [app]. rewrite !blocks_block, insert_delete_eq, insert_insert_eq by assumption. cbn [blocks].
    now replace (total pre + n1 + (n - n1)) with (total pre + n) by lia. }
  rewrite <- Eptr, <- Ets in Hbl.
  assert (Hkept : forall a, in_block ts' a -> memory j' !! a = memory j !! a).
  { intros a Ha. rewrite Ej. apply Hk. unfold ts' in Ha. unfold in_block in *. now rewrite blocks_coalesce in Ha. }
  apply (realloc_in_heap j' ts'); try (rewrite Ej; reflexivity); [| exact Hbl | unfold JMEM_CELLOCATOR_CELL_SIZE; lia | now left | |].
  - split; [rewrite Ej; now apply list_ok_account | now rewrite Hused | discriminate].
  - intros a (q & m & Hq & Ha) Hout. apply Hkept. exists q, m. split; [| assumption]. rewrite Hbl.
    assert (q <> ptr) by (intros ->; rewrite Ets in Hq; assert (m = n) as -> by congruence; contradiction). now rewrite lookup_insert_ne, lookup_delete_ne by congruence.
  - intros k Hk'. apply Hkept. exists ptr, n1. rewrite Hbl, lookup_insert_eq. split; [reflexivity | unfold n1 in *; lia].
Qed.

(** The block grows in place, or into the region in front of it *)
Lemma realloc_extend pre post p ts' : ts = pre ++ USED (jmem_align s) :: post -> ptr = total pre -> JMEM_CELLOCATOR_CELL_SIZE < jmem_align s < jmem_align new ->
  let req := jmem_align new - jmem_align s in
  extend_tiles pre (jmem_align s) post req = Some (p, ts') ->
  exists skip j1, try_extend cfg ptr s (jmem_align s) req j = DONE (Some (p, skip)) j1
    /\ reallocated j live ptr s new ((set_skip skip;; account_allocation cfg req;; mret (Some p)) j1).
Proof.
  intros Ets Eptr Hgrow req E. destruct (live_block cfg None _ _ _ _ _ _ _ H Hl Hc) as (Hs & _ & _ & Hb). pose proof (rep_heap _ _ _ _ _ _ H) as [HL Hacc _].
  rewrite Ets in HL, Hacc, Hb. set (n := jmem_align s) in *. assert (Hd : (JMEM_ALIGNMENT | req)) by (apply Z.divide_sub_r; apply Z.divide_factor_r).
  pose proof (list_tiles _ _ _ HL) as Hok. assert (Hreq : 0 < req) by (unfold req, n in *; lia). destruct (extend_tiles_blocks _ _ _ _ _ _ Hok Hreq E) as (Hbl & Hused & Hp).
  pose proof (try_extend_spec j pre n post s req HL Hreq Hd ltac:(lia)) as Ht. rewrite E in Ht. rewrite <- Eptr, <- ?Ets in *.
  destruct Ht as (m' & skip & Hdo & HL' & Hcopy & Hkept). exists skip, (with_list m' (jmem_heap_list_skip_p j) j). split; [exact Hdo |].
  erewrite bind_done by reflexivity. change (mk_jmem _ _ _ _ _ _ _) with (with_list m' skip j).
  pose proof (used_bounds _ Hok) as Hu. pose proof (list_used_range cfg Hheap _ _ HL') as Hu'. rewrite Hused in Hu'.
  destruct (account_allocation_spec cfg Hheap None (with_list m' skip j) (used ts) req Hacc) as (j' & Hd' & Hacc' & _ & Ej);
    [cbn [reserve]; lia | unfold req, n in *; lia | lia |].
  change (with_list m' skip (with_list m' (jmem_heap_list_skip_p j) j)) with (with_list m' skip j). erewrite bind_done by exact Hd'.
  replace (n + req) with (jmem_align new) in Hbl by (unfold req, n; lia).
  apply (realloc_in_heap j' ts'); try (rewrite Ej; reflexivity); [| exact Hbl | lia | exact Hp | |].
  - split; [rewrite Ej; now apply list_ok_account | now rewrite Hused | discriminate].
  - intros a Ha Hout. rewrite Ej. now apply Hkept.
  - intros k Hk. rewrite Ej. apply Hcopy. lia.
Qed.
End Cases.

(** ** Moving a block *)

Context (low_pressure_runs : jmem_context -> bool).

(** The contents go to a block [p] of [n] bytes *)
Lemma copy_block r j ts pages fc live p n ptr s size : rep r j ts pages fc (<[p := n]> live) -> live !! p = None -> live !! ptr = Some s -> 0 <= size <= n ->
  exists j', memmove p ptr size j = DONE tt j' /\ rep r j' ts pages fc (<[p := n]> live) /\ keeps_live live j j' /\ engine j' = engine j
    /\ (forall k, 0 <= 8 * k < size -> memory j' !! (p + 8 * k) = memory j !! (ptr + 8 * k))
    /\ exists m', j' = with_list m' (jmem_heap_list_skip_p j) j.
Proof.
  intros H Hn Hl Hsize. destruct (memmove_spec p ptr size j) as (m' & Hd & Hcopy & Hrest); [lia |].
  destruct (rep_write H p n m' (lookup_insert_eq _ _ _)) as [Hr Hk]; [intros a Ha; apply Hrest; lia |].
  rewrite delete_insert_id in Hk by assumption. eexists. splits; [exact Hd | exact Hr | exact Hk | reflexivity | exact Hcopy | now exists m'].
Qed.

Lemma realloc_moved j live ptr s new j1 live1 p n j2 j3 ts pages fc : gc_step j live j1 live1 -> live !! ptr = Some s -> ptr ∉ (pending (engine j)).*1 ->
  live1 !! p = None -> p ∉ (pending (engine j1)).*1 -> keeps_live live1 j1 j2 ->
  (forall k, 0 <= 8 * k < Z.min s new -> memory j2 !! (p + 8 * k) = memory j1 !! (ptr + 8 * k)) ->
  keeps_live (delete ptr (<[p := n]> live1)) j2 j3 -> Z.min s new <= n -> engine j2 = engine j1 -> engine j3 = engine j2 ->
  rep None j3 ts pages fc (delete ptr (<[p := n]> live1)) -> (stored cfg ts pages fc p n -> stored cfg ts pages fc p new) ->
  reallocated j live ptr s new (DONE (Some p) j3).
Proof.
  intros [Hc Hk] Hl Hg Hn Hp Hk12 Hcopy Hk23 Hmin E2 E3 H Hst. destruct (collected_keeps _ _ _ _ ptr Hc Hg) as [Hl1 _]. rewrite Hl in Hl1.
  assert (Hne : ptr <> p) by congruence. rewrite delete_insert_ne in * by congruence. pose proof (rep_relabel H p n new (lookup_insert_eq _ _ _)) as Hr.
  rewrite insert_insert_eq, E3, E2 in Hr. exists live1. splits.
  - now rewrite E3, E2.
  - intros q t a Hq Ha. pose proof Hq as Hq'. apply lookup_delete_Some in Hq' as [Hqp Hq'].
    assert (Hqn : q <> p) by congruence. rewrite (Hk23 q t a), (Hk12 q t a), (Hk q t a); try assumption; [reflexivity |]. now rewrite lookup_insert_ne by congruence.
  - now rewrite lookup_delete_ne by congruence.
  - congruence.
  - intros k Hk'. rewrite (Hk23 p n), Hcopy by (try apply lookup_insert_eq; lia). apply (Hk ptr s); [assumption | lia].
  - exists ts, pages, fc. now apply Hr.
Qed.

Lemma alloc_block_ok r n j ts pages fc live : 0 < n <= jmem_align n -> rep r j ts pages fc live ->
  match jmem_heap_alloc_block cfg low_pressure_runs n j with
  | DONE (Some p) j' => allocated cfg r j live n (Some p) j'
  | DONE None _ | FAULT => False
  | FATAL => True
  end.
Proof.
  intros Hn H. unfold jmem_heap_alloc_block, jmem_heap_gc_and_alloc_block.
  pose proof (gc_and_alloc_ok cfg r Hcfg low_pressure_runs (jmem_heap_alloc cfg low_pressure_runs) n JMEM_PRESSURE_FULL j ts pages fc live) as Hga.
  specialize (Hga (heap_alloc_ok cfg r Hcfg low_pressure_runs n Hn) ltac:(lia) ltac:(now right) H).
  destruct (gc_and_alloc _ _ _ _ _ _) as [[p|] j'| |]; cbn in Hga; [apply Hga | | exact I | exact Hga]. destruct Hga as [_ Hga]. now destruct (Hga eq_refl).
Qed.

Section Moves.
Context {j : jmem_context} {ts : list tile} {pages fc : list Z} {live : gmap Z Z} (ptr s new : Z).
Hypothesis H : rep None j ts pages fc live.
Hypothesis Hl : live !! ptr = Some s.
Hypothesis Hg : ptr ∉ (pending (engine j)).*1.
Hypothesis Hnew : 0 < new <= B64 - 8.

(** From a cell to the heap *)
Lemma realloc_cell_to_heap : in_cells cfg pages ptr -> JMEM_CELLOCATOR_CELL_SIZE < jmem_align new ->
  reallocated j live ptr s new ((chunk_p ← jmem_heap_alloc_block cfg low_pressure_runs (jmem_align new);
    match chunk_p with
    | Some chunk => memmove chunk ptr (jmem_align s);; jmem_cellocator_cell_free ptr;; mret chunk_p
    | None => mret None
    end) j).
Proof.
  intros Hc Hbig. destruct (align_twice new Hnew) as [Htwice Hle]. destruct (rep_live _ _ _ _ _ _ H ptr s Hl) as (Hs & [(Hsmall & _ & _)|(_ & _ & Hb)]);
    [| pose proof (cell_not_block cfg H ptr Hc); congruence].
  pose proof (alloc_block_ok None (jmem_align new) j ts pages fc live ltac:(lia) H) as Ha.
  destruct (jmem_heap_alloc_block _ _ _ j) as [[p|] j1| |] eqn:E; [| destruct Ha | unfold mbind, J_bind; rewrite E; cbn; lia | destruct Ha].
  rewrite (bind_done _ _ _ _ _ E). destruct Ha as (live1 & Hgc & Hn & Hu & _ & ts1 & pages1 & fc1 & Hr).
  destruct (collected_keeps _ _ _ _ ptr (proj1 Hgc) Hg) as [Hl1 Hg1]. rewrite Hl in Hl1. assert (Hne : p <> ptr) by congruence.
  destruct (copy_block None j1 ts1 pages1 fc1 live1 p (jmem_align new) ptr s (jmem_align s) Hr Hn Hl1 ltac:(lia)) as (j2 & Hd2 & Hr2 & Hk2 & Hu2 & Hcopy & _).
  erewrite bind_done by exact Hd2. assert (Hlp : <[p := jmem_align new]> live1 !! ptr = Some s) by (now rewrite lookup_insert_ne by congruence).
  assert (Hc1 : in_cells cfg pages1 ptr) by (destruct (rep_live _ _ _ _ _ _ Hr2 ptr s Hlp) as (_ & [(_ & Hc1 & _)|(Hx & _)]); [exact Hc1 | lia]).
  destruct (cell_free_spec cfg None j2 ts1 pages1 fc1 _ ptr s Hr2 Hlp Hc1 ltac:(congruence)) as (j3 & Hd3 & Hr3 & Hm3 & Hu3).
  erewrite bind_done by exact Hd3. eapply realloc_moved; try eassumption; try lia.
  - intros k Hk. apply Hcopy. lia.
  - intros q t a Hq Ha. apply lookup_delete_Some in Hq as [Hqp Hq]. apply Hm3. intros ->. pose proof (align_extent s). pose proof (align_extent t).
    destruct (rep_live _ _ _ _ _ _ Hr2 q t Hq) as (Ht & _). destruct (live_disjoint cfg Hr2 ptr s q t Hlp Hq Hqp); lia.
  - unfold stored. rewrite Htwice. intros (_ & Hst). split; [lia | exact Hst].
Qed.

(** From the heap to a cell *)
Lemma realloc_heap_to_cell : jmem_align new <= JMEM_CELLOCATOR_CELL_SIZE < jmem_align s -> s <= B64 - 8 ->
  reallocated j live ptr s new ((new_buffer ← jmem_heap_alloc cfg low_pressure_runs (jmem_align new);
    (match new_buffer with Some b => memmove b ptr (jmem_align new) | None => mret tt end);;
    jmem_heap_free_block cfg ptr (jmem_align s);;
    mret new_buffer) j).
Proof.
  intros Hsmall Hmax. destruct (align_twice new Hnew) as [Htwice Hle]. destruct (rep_live _ _ _ _ _ _ H ptr s Hl) as (Hs & _).
  destruct (align_twice s ltac:(lia)) as [Htwice_s _].
  destruct (heap_alloc_ok cfg None Hcfg low_pressure_runs (jmem_align new) ltac:(lia) j ts pages fc live H) as ([p|] & j1 & Hd1 & live1 & Hgc & Ha).
  all: erewrite bind_done by exact Hd1; destruct (collected_keeps _ _ _ _ ptr (proj1 Hgc) Hg) as [Hl1 Hg1]; rewrite Hl in Hl1.
  - destruct Ha as (Hn & Hu & _ & ts1 & pages1 & fc1 & Hr). assert (Hne : p <> ptr) by congruence.
    destruct (copy_block None j1 ts1 pages1 fc1 live1 p (jmem_align new) ptr s (jmem_align new) Hr Hn Hl1 ltac:(lia)) as (j2 & Hd2 & Hr2 & Hk2 & Hu2 & Hcopy & _).
    erewrite bind_done by exact Hd2. assert (Hlp : <[p := jmem_align new]> live1 !! ptr = Some s) by (now rewrite lookup_insert_ne by congruence).
    destruct (free_block_spec cfg None Hcfg j2 ts1 pages1 fc1 _ ptr s (jmem_align s) Hr2 Hlp Htwice_s ltac:(congruence) ltac:(discriminate)) as (j3 & ts3 & fc3 & Hd3 & Hr3 & Hk3 & Hu3).
    erewrite bind_done by exact Hd3. eapply realloc_moved; try eassumption; try lia.
    + intros k Hk. apply Hcopy. lia.
    + unfold stored. rewrite Htwice. intros (_ & Hst). split; [lia | exact Hst].
  - destruct Ha as (ts1 & pages1 & fc1 & Hr & _). erewrite bind_done by reflexivity.
    destruct (free_block_spec cfg None Hcfg j1 ts1 pages1 fc1 _ ptr s (jmem_align s) Hr Hl1 Htwice_s Hg1 ltac:(discriminate)) as (j3 & ts3 & fc3 & Hd3 & Hr3 & Hk3 & Hu3).
    erewrite bind_done by exact Hd3. exists live1. destruct Hgc as [Hc Hk]. splits; try lia.
    + now rewrite Hu3.
    + eapply keeps_live_trans; [| exact Hk | exact Hk3]. intros o t Ho. now apply lookup_delete_Some in Ho as [_ Ho].
    + now exists ts3, pages1, fc3.
Qed.

(** The block is in use, but taken off the account *)
Lemma reserve_block : ~ in_cells cfg pages ptr -> s <= jmem_align s ->
  rep (Some (ptr, jmem_align s)) (with_account (u64 (jmem_heap_allocated_size j - jmem_align s)) (jmem_heap_limit j) j) ts pages fc live.
Proof.
  intros Hc _. destruct (live_block cfg None _ _ _ _ _ _ _ H Hl Hc) as (Hs & _ & _ & Hb). pose proof (rep_heap _ _ _ _ _ _ H) as [HL [Hacc Hlim] _].
  cbn [reserve] in Hacc, Hlim. pose proof (blocks_used 0 ts ptr _ (list_tiles _ _ _ HL) Hb). pose proof (list_used_range cfg Hheap _ _ HL).
  rewrite Hacc. replace (u64 (used ts - 0 - jmem_align s)) with (used ts - jmem_align s) by (unfold u64; rewrite Z.mod_small; lia).
  split; try apply H.
  - split; [now apply list_ok_account | | intros o n E; now injection E as <- <-]. unfold account_ok. cbn [reserve with_account jmem_heap_allocated_size jmem_heap_limit]. lia.
  - intros o n E. now injection E as <- _.
Qed.

Lemma realloc_move : ~ in_cells cfg pages ptr -> JMEM_CELLOCATOR_CELL_SIZE < jmem_align s < jmem_align new ->
  reallocated j live ptr s new ((j ← get_context;
    set_allocated (u64 (jmem_heap_allocated_size j - jmem_align s));;
    ret_block_p ← jmem_heap_alloc_block cfg low_pressure_runs new;
    prev_p ← jmem_heap_find_prev cfg ptr;
    match ret_block_p with
    | Some b => memmove b ptr s
    | None => fault
    end;;
    jmem_heap_insert_block ptr prev_p (jmem_align s);;
    mret ret_block_p) j).
Proof.
  intros Hc Hgrow. destruct (live_block cfg None _ _ _ _ _ _ _ H Hl Hc) as (Hs & _ & _ & Hb). destruct (align_twice new Hnew) as [_ Hle].
  assert (Hsn : s <= new).
  { destruct (align_bounds new Hnew) as [Hb2 [k Hk]]. assert (Hd : (JMEM_ALIGNMENT | jmem_align s)) by apply Z.divide_factor_r. destruct Hd as [k' Hk']. unfold JMEM_ALIGNMENT in *. lia. }
  set (n := jmem_align s) in *. pose proof (reserve_block Hc ltac:(lia)) as H0. fold n in H0. set (j0 := with_account _ _ _) in *. set (res := Some (ptr, n)) in *.
  erewrite bind_done by reflexivity. cbv zeta. erewrite bind_done by reflexivity. change (mk_jmem _ _ _ _ _ _ _) with j0.
  pose proof (alloc_block_ok res new j0 ts pages fc live ltac:(lia) H0) as Ha.
  destruct (jmem_heap_alloc_block _ _ _ j0) as [[p|] j1| |] eqn:E; [| destruct Ha | unfold mbind, J_bind; rewrite E; cbn; lia | destruct Ha].
  rewrite (bind_done _ _ _ _ _ E). destruct Ha as (live1 & Hgc & Hn & Hu & Hlim & ts1 & pages1 & fc1 & Hr). cbn [engine with_account j0] in Hgc.
  destruct (collected_keeps _ _ _ _ ptr (proj1 Hgc) Hg) as [Hl1 Hg1]. rewrite Hl in Hl1. assert (Hne : p <> ptr) by congruence.
  pose proof (heap_reserved _ _ _ _ (rep_heap _ _ _ _ _ _ Hr) ptr n eq_refl) as Hb1. pose proof (rep_heap _ _ _ _ _ _ Hr) as [HL1 [Hacc1 Hlow] _].
  assert (Hc1 : ~ in_cells cfg pages1 ptr) by (intros Hc1; pose proof (cell_not_block cfg Hr ptr Hc1); congruence).
  destruct (blocks_split 0 ts1 ptr n Hb1) as (pre & post & Ets & Eptr). rewrite Z.add_0_l in Eptr. subst ts1.
  destruct (list_around cfg Hheap _ _ _ _ HL1) as (ns & q & t & Har & _ & Hfind). rewrite <- Eptr in Hfind. erewrite bind_done by exact Hfind.
  destruct (copy_block res j1 _ pages1 fc1 live1 p new ptr s s Hr Hn Hl1 ltac:(unfold n in *; lia)) as (j2 & Hd2 & Hr2 & Hk2 & Hu2 & Hcopy & m2 & Ej2).
  erewrite bind_done by exact Hd2. pose proof (heap_list _ _ _ _ (rep_heap _ _ _ _ _ _ Hr2)) as HL2.
  destruct (insert_tiles cfg Hheap _ _ _ _ _ _ _ HL2 Har) as (m3 & Hins & HL3 & Hk3). rewrite <- Eptr in Hins. erewrite bind_done by exact Hins.
  set (j3 := with_list m3 q j2) in *. assert (Hlp : <[p := new]> live1 !! total pre = Some s) by (rewrite <- Eptr, lookup_insert_ne by congruence; assumption).
  assert (Hacc3 : account_ok cfg None j3 (used (coalesce (pre ++ FREE n :: post)))).
  { specialize (Hlim ltac:(lia) ltac:(cbn [reserve res]; lia)). unfold account_ok, j3. cbn [reserve with_list jmem_heap_allocated_size jmem_heap_limit]. rewrite Ej2.
    cbn [with_list jmem_heap_allocated_size jmem_heap_limit]. rewrite used_coalesce, used_app in *. cbn [used reserve res] in *. lia. }
  destruct (rep_release cfg res Hcfg None j2 j3 pre n post pages1 fc1 (<[p := new]> live1) s Hr2 Hlp eq_refl) as [Hr3 Hkl3]; rewrite <- ?Eptr in *.
  - exact Hc1.
  - congruence.
  - split; [exact HL3 | exact Hacc3 | discriminate].
  - unfold keeps. splits; [exact Hk3 | reflexivity | reflexivity | reflexivity].
  - discriminate.
  - eapply realloc_moved; try eassumption; try reflexivity; try lia; [intros k Hk; apply Hcopy; lia | tauto].
Qed.

(** The block must grow, and the list is as the last collection left it *)
Lemma realloc_grow : ~ in_cells cfg pages ptr -> JMEM_CELLOCATOR_CELL_SIZE < jmem_align s < jmem_align new ->
  let req := jmem_align new - jmem_align s in
  reallocated j live ptr s new ((extended ← try_extend cfg ptr s (jmem_align s) req;
    match extended with
    | Some (ret_block_p, prev_p) => set_skip prev_p;; account_allocation cfg req;; mret (Some ret_block_p)
    | None =>
        j ← get_context;
        set_allocated (u64 (jmem_heap_allocated_size j - jmem_align s));;
        ret_block_p ← jmem_heap_alloc_block cfg low_pressure_runs new;
        prev_p ← jmem_heap_find_prev cfg ptr;
        match ret_block_p with
        | Some b => memmove b ptr s
        | None => fault
        end;;
        jmem_heap_insert_block ptr prev_p (jmem_align s);;
        mret ret_block_p
    end) j).
Proof.
  intros Hc Hgrow req. destruct (live_block cfg None _ _ _ _ _ _ _ H Hl Hc) as (Hs & _ & _ & Hb). destruct (align_twice new Hnew) as [_ Hle].
  destruct (blocks_split 0 ts ptr _ Hb) as (pre & post & Ets & Eptr). rewrite Z.add_0_l in Eptr.
  assert (Hd : (JMEM_ALIGNMENT | req)) by (apply Z.divide_sub_r; apply Z.divide_factor_r).
  pose proof (heap_list _ _ _ _ (rep_heap _ _ _ _ _ _ H)) as HL. rewrite Ets in HL.
  pose proof (try_extend_spec j pre _ post s req HL ltac:(unfold req; lia) Hd ltac:(lia)) as Ht. rewrite <- Eptr in Ht.
  destruct (extend_tiles pre (jmem_align s) post req) as [[p ts']|] eqn:E.
  - destruct (realloc_extend ptr s new H Hl Hg ltac:(lia) Hc pre post p ts' Ets Eptr Hgrow E) as (skip & j1 & Hdo & Hr). now erewrite bind_done by exact Hdo.
  - erewrite bind_done by exact Ht. now apply realloc_move.
Qed.
End Moves.

(** jmem_heap_realloc_block, in all cases *)
Lemma realloc_block_ok j ts pages fc live ptr s new : rep None j ts pages fc live -> live !! ptr = Some s -> ptr ∉ (pending (engine j)).*1 ->
  s <= B64 - 8 -> 0 < new <= B64 - 8 -> reallocated j live ptr s new (jmem_heap_realloc_block cfg low_pressure_runs ptr s new j).
Proof.
  intros H Hl Hg Hmax Hnew. unfold jmem_heap_realloc_block. cbv zeta. destruct (rep_live _ _ _ _ _ _ H ptr s Hl) as (Hs & Hst). destruct (align_twice new Hnew) as [_ Hle].
  destruct (decide (in_cells cfg pages ptr)) as [Hc|Hc].
  - destruct Hst as [(Hsmall & _ & Hfc)|(_ & _ & Hb)]; [| pose proof (cell_not_block cfg H ptr Hc); congruence].
    destruct (find_cell cfg None j ts pages fc live ptr H Hc) as [q Hf]. erewrite bind_done by exact Hf.
    destruct (Z.leb_spec (jmem_align new) JMEM_CELLOCATOR_CELL_SIZE); [| eapply realloc_cell_to_heap; eassumption || lia].
    eapply realloc_stay; try eassumption; try lia. intros _. split; [lia | left; now splits].
  - destruct (live_block cfg None _ _ _ _ _ _ _ H Hl Hc) as (_ & Hbig & Hp & Hb). rewrite (bind_done _ _ _ _ _ (find_block cfg None Hcfg j ts pages fc live ptr _ H Hb)).
    destruct (Z.eqb_spec (jmem_align s) (jmem_align new)) as [E|E].
    + eapply realloc_stay; try eassumption; try lia. intros _. split; [lia | right; rewrite <- E; now splits].
    + destruct (Z.ltb_spec (jmem_align new) (jmem_align s)) as [Hless|Hmore].
      * destruct (Z.leb_spec (jmem_align new) JMEM_CELLOCATOR_CELL_SIZE); [eapply realloc_heap_to_cell | eapply realloc_shrink]; eassumption || lia.
      * erewrite bind_done by reflexivity. cbv zeta. destruct (jmem_heap_limit j <=? _).
        -- destruct (free_unused_spec cfg None Hcfg low_pressure_runs JMEM_PRESSURE_LOW j ts pages fc live H) as (j1 & ts1 & fc1 & live1 & Hd & Hr & Hgc & _); [now left |].
           erewrite bind_done by exact Hd. destruct (collected_keeps _ _ _ _ ptr (proj1 Hgc) Hg) as [Hl1 Hg1]. rewrite Hl in Hl1.
           eapply reallocated_after; [exact Hgc | exact Hl | exact Hg |]. eapply realloc_grow; try eassumption; lia.
        -- erewrite bind_done by reflexivity. eapply realloc_grow; try eassumption; lia.
Qed.
End Realloc.
