(* ===== verification/JmemSpec.v ===== *)
(** * What the memory manager promises

    The clients of src/jjs-core/jmem see blocks, not regions, cells and pages.
    The specification is an allocator that hands out aligned blocks of the heap
    area that do not overlap, keeps what is stored in them, and drops those that
    the garbage collector finds unreachable.  Every run of the operations of
    Jmem from jmem_heap_init is a run of the specification, and no operation
    reads or follows anything that is not there. *)
From Stdlib Require Import ZArith Lia.
From stdpp Require Import base gmap list.
From S2P Require Import Prelude JmemHeap JmemPointers Jmem JmemRealloc.
#[local] Open Scope Z_scope.

(** ** The specification *)

(** The blocks in use with their sizes, those of them that the engine can do without, and memory *)
Record spec_state := mk_spec { spec_live : gmap Z Z; spec_engine : engine_blocks; spec_memory : gmap Z slot }.

(** What the clients and the engine do with the memory manager *)
Inductive call :=
| ALLOC_BLOCK (size : Z)
| ALLOC_BLOCK_NULL_ON_ERROR (size : Z)
| REALLOC_BLOCK (ptr old_size new_size : Z)
| FREE_BLOCK (ptr size : Z)
| WRITE (ptr offset word : Z)
| DROP (ptr size : Z) (** the last reference to a block disappears *)
| KEEP_HASHMAP (ptr size : Z) (** a block becomes the hash map of an object *)
| TAKE_HASHMAP (ptr size : Z) (** it is the hash map of an object no longer *)
| COLLECT.

(** The clients use what they hold, with the size they asked for *)
Definition held (live : gmap Z Z) (e : engine_blocks) (ptr s : Z) : Prop := live !! ptr = Some s /\ ptr ∉ (pending e).*1.
Definition size_ok (s : Z) : Prop := 0 < s <= B64 - 8.
Definition permitted (c : call) (live : gmap Z Z) (e : engine_blocks) : Prop :=
  match c with
  | ALLOC_BLOCK s | ALLOC_BLOCK_NULL_ON_ERROR s => size_ok s
  | REALLOC_BLOCK ptr s new => held live e ptr s /\ size_ok s /\ size_ok new
  | FREE_BLOCK ptr s | DROP ptr s | KEEP_HASHMAP ptr s => held live e ptr s
  | TAKE_HASHMAP ptr s => (ptr, s) ∈ hashmaps e
  | WRITE ptr k _ => exists s, live !! ptr = Some s /\ 0 <= k < s
  | COLLECT => True
  end.

(** The blocks after a call, with its result *)
Definition hold (c : call) (res : option Z) (live : gmap Z Z) : gmap Z Z :=
  match c, res with
  | ALLOC_BLOCK s, Some p | ALLOC_BLOCK_NULL_ON_ERROR s, Some p => <[p := s]> live
  | REALLOC_BLOCK ptr _ new, Some p => <[p := new]> (delete ptr live)
  | REALLOC_BLOCK ptr _ _, None | FREE_BLOCK ptr _, _ => delete ptr live
  | _, _ => live
  end.

(** [s] bytes at [p] are an aligned part of the area, apart from the blocks [live] *)
Definition fresh (area : Z) (live : gmap Z Z) (p s : Z) : Prop :=
  (JMEM_ALIGNMENT | p) /\ 0 <= p /\ p + s <= area /\ forall o t, live !! o = Some t -> p + s <= o \/ o + t <= p.

Definition same_contents (live : gmap Z Z) (m m' : gmap Z slot) : Prop :=
  forall o s a, live !! o = Some s -> o <= a < o + s -> m' !! a = m !! a.

(** What the result of a call must be: [live] are the blocks that survive a
    collection during the call, with [m] before and [m'] after it *)
Definition result_ok (area : Z) (c : call) (res : option Z) (live : gmap Z Z) (m m' : gmap Z slot) : Prop :=
  match c with
  | ALLOC_BLOCK s => same_contents live m m' /\ exists p, res = Some p /\ fresh area live p s
  | ALLOC_BLOCK_NULL_ON_ERROR s => same_contents live m m' /\ forall p, res = Some p -> fresh area live p s
  | REALLOC_BLOCK ptr s new => same_contents (delete ptr live) m m' /\
      match res with
      | Some p => fresh area (delete ptr live) p new /\ forall k, 0 <= 8 * k < Z.min s new -> m' !! (p + 8 * k) = m !! (ptr + 8 * k)
      | None => new <= JMEM_CELLOCATOR_CELL_SIZE < s
      end
  | FREE_BLOCK ptr s => same_contents (delete ptr live) m m'
  | WRITE ptr k w => same_contents (delete ptr live) m m' /\ m' !! (ptr + k) = Some (DATA w)
      /\ forall s a, live !! ptr = Some s -> ptr <= a < ptr + s -> a <> ptr + k -> m' !! a = m !! a
  | DROP _ _ | KEEP_HASHMAP _ _ | TAKE_HASHMAP _ _ | COLLECT => same_contents live m m'
  end.

(** What the calls do to the blocks the engine can do without: allocations may collect them *)
Definition remove_block (ptr : Z) (l : list (Z * Z)) : list (Z * Z) := filter (fun x => x.1 <> ptr) l.
Definition spec_collect (c : call) (live : gmap Z Z) (e : engine_blocks) (live' : gmap Z Z) (e' : engine_blocks) : Prop :=
  match c with
  | FREE_BLOCK _ _ | WRITE _ _ _ => live' = live /\ e' = e
  | DROP ptr s => live' = live /\ e' = mk_engine ((ptr, s) :: unreachable e) (hashmaps e)
  | KEEP_HASHMAP ptr s => live' = live /\ e' = mk_engine (unreachable e) ((ptr, s) :: hashmaps e)
  | TAKE_HASHMAP ptr _ => live' = live /\ e' = mk_engine (unreachable e) (remove_block ptr (hashmaps e))
  | COLLECT => live' = collect live (unreachable e) /\ e' = mk_engine [] (hashmaps e)
  | _ => collected e live e' live'
  end.

Inductive spec_step (area : Z) : spec_state -> call * option Z -> spec_state -> Prop :=
| SPEC_STEP c res live e m live1 e' m' : permitted c live e -> spec_collect c live e live1 e' -> result_ok area c res live1 m m' ->
    spec_step area (mk_spec live e m) (c, res) (mk_spec (hold c res live1) e' m').

(** Runs: sequences of calls with their results *)
Inductive steps {S E : Type} (step : S -> E -> S -> Prop) (s : S) : list E -> S -> Prop :=
| STEPS_NIL : steps step s [] s
| STEPS_SNOC es s1 e s2 : steps step s es s1 -> step s1 e s2 -> steps step s (es ++ [e]) s2.

(** ** The operations as a machine *)

Section Machine.
Context (cfg : jmem_config).
Context (low_pressure_runs : jmem_context -> bool).

Definition exec (c : call) : J (option Z) :=
  match c with
  | ALLOC_BLOCK s => jmem_heap_alloc_block cfg low_pressure_runs s
  | ALLOC_BLOCK_NULL_ON_ERROR s => jmem_heap_alloc_block_null_on_error cfg low_pressure_runs s
  | REALLOC_BLOCK ptr s new => jmem_heap_realloc_block cfg low_pressure_runs ptr s new
  | FREE_BLOCK ptr s => jmem_heap_free_block cfg ptr s;; mret None
  | WRITE ptr k w => write_slot (ptr + k) (DATA w);; mret None
  | DROP ptr s => j ← get_context; set_engine (mk_engine ((ptr, s) :: unreachable (engine j)) (hashmaps (engine j)));; mret None
  | KEEP_HASHMAP ptr s => j ← get_context; set_engine (mk_engine (unreachable (engine j)) ((ptr, s) :: hashmaps (engine j)));; mret None
  | TAKE_HASHMAP ptr s => j ← get_context; set_engine (mk_engine (unreachable (engine j)) (remove_block ptr (hashmaps (engine j))));; mret None
  | COLLECT => ecma_gc_run cfg;; mret None
  end.

(** The blocks that the collections during a call left: those of the two
    kinds that were there before and are not there after the call are gone *)
Definition survivors (c : call) (j j' : jmem_context) (live : gmap Z Z) : gmap Z Z :=
  match c with
  | ALLOC_BLOCK _ | ALLOC_BLOCK_NULL_ON_ERROR _ | REALLOC_BLOCK _ _ _ | COLLECT => collect live (gone (engine j) (engine j'))
  | _ => live
  end.

Inductive machine_step : jmem_context * gmap Z Z -> call * option Z -> jmem_context * gmap Z Z -> Prop :=
| MACHINE_STEP c res j live j' : permitted c live (engine j) -> exec c j = DONE res j' ->
    machine_step (j, live) (c, res) (j', hold c res (survivors c j j' live)).

Definition abstract (st : jmem_context * gmap Z Z) : spec_state := mk_spec st.2 (engine st.1) (memory st.1).

(** The state after jmem_heap_init *)
Definition start : jmem_context * gmap Z Z := (jmem_heap_init cfg, ∅).

Hypothesis Hcfg : jmem_config_ok cfg.
Notation rep := (mem_rep cfg None).

Lemma init_rep : rep (jmem_heap_init cfg) [FREE (JMEM_HEAP_AREA_SIZE cfg)] [] [] ∅.
Proof.
  pose proof (heap_config_ok _ Hcfg) as Hheap. pose proof (area_range cfg Hheap) as Ha. pose proof (gc_limit_range _ Hheap). unfold jmem_heap_init.
  assert (Hok : Forall tile_ok [FREE (JMEM_HEAP_AREA_SIZE cfg)]) by (constructor; [split; [cbn; lia | apply (heap_size_aligned _ Hheap)] | constructor]).
  split; cbn [memory cell_pages free_cells engine page_chain cell_chain].
  - split; [split | |].
    + exact Hok.
    + exact I.
    + cbn. lia.
    + split; [reflexivity |]. exists 0. split; [apply lookup_insert_eq |]. split; [reflexivity |]. exists JMEM_HEAP_END_OF_LIST.
      now split.
    + apply elem_of_cons. now left.
    + unfold account_ok. cbn. lia.
    + discriminate.
  - reflexivity.
  - constructor.
  - intros p Hp. now apply elem_of_nil in Hp.
  - reflexivity.
  - constructor.
  - intros c Hc. now apply elem_of_nil in Hc.
  - intros o s Ho. rewrite lookup_empty in Ho. discriminate.
  - intros c (p & Hp & _). now apply elem_of_nil in Hp.
  - intros o n Ho. cbn in Ho. rewrite lookup_empty in Ho. discriminate.
  - constructor.
  - intros o s Ho. now apply elem_of_nil in Ho.
  - discriminate.
Qed.

(** *** Blocks are aligned *)

Lemma blocks_aligned base ts o n : Forall tile_ok ts -> (JMEM_ALIGNMENT | base) -> blocks base ts !! o = Some n -> (JMEM_ALIGNMENT | o).
Proof.
  intros Hok. revert base. induction Hok as [|t ts [_ Ht] Hts IH]; intros base Hb; cbn; [now rewrite lookup_empty |].
  pose proof (Z.divide_add_r _ _ _ Hb Ht) as Hnext. destruct t as [k|k]; cbn in *; [now apply IH |].
  intros H. apply lookup_insert_Some in H as [[<- _]|[_ H]]; [assumption | now apply (IH (base + k))].
Qed.

Lemma live_aligned j ts pages fc live o s : rep j ts pages fc live -> live !! o = Some s -> (JMEM_ALIGNMENT | o).
Proof.
  intros H Hl. pose proof (rep_tiles cfg H) as Hok. destruct (rep_live _ _ _ _ _ _ H o s Hl) as (_ & [(_ & (p & Hp & k & _ & ->) & _)|(_ & _ & Hb)]).
  - pose proof (blocks_aligned 0 ts p _ Hok (Z.divide_0_r _) (rep_pages_blocks _ _ _ _ _ _ H p Hp)) as [q ->].
    unfold JMEM_ALIGNMENT, JMEM_CELLOCATOR_PAGE_HEADER_SIZE, JMEM_CELLOCATOR_CELL_SIZE. exists (q + 3 + 4 * k). lia.
  - now apply (blocks_aligned 0 ts o _ Hok (Z.divide_0_r _) Hb).
Qed.

Lemma live_fresh j ts pages fc live p s : rep j ts pages fc (<[p := s]> live) -> live !! p = None -> fresh (JMEM_HEAP_AREA_SIZE cfg) live p s.
Proof.
  intros H Hn. assert (Hl : <[p := s]> live !! p = Some s) by apply lookup_insert_eq. destruct (live_in_area cfg H p s Hl) as (H1 & H2 & H3).
  split; [eapply live_aligned; eassumption |]. splits; try assumption. intros o t Ho. assert (Hne : p <> o) by congruence.
  assert (Hlo : <[p := s]> live !! o = Some t) by now rewrite lookup_insert_ne.
  pose proof (align_extent s). pose proof (align_extent t). destruct (rep_live _ _ _ _ _ _ H p s Hl) as (Hs & _). destruct (rep_live _ _ _ _ _ _ H o t Hlo) as (Ht & _).
  destruct (live_disjoint cfg H p s o t Hl Hlo Hne); lia.
Qed.

(** *** One call *)

Definition may_end (c : call) : Prop := match c with ALLOC_BLOCK _ | REALLOC_BLOCK _ _ _ => True | _ => False end.

(** The outcome of a call in a state with the blocks [live] *)
Definition call_ok (c : call) (j : jmem_context) (live : gmap Z Z) (o : outcome (option Z)) : Prop :=
  match o with
  | FAULT => False
  | FATAL => may_end c
  | DONE res j' => exists live1, spec_collect c live (engine j) live1 (engine j')
      /\ result_ok (JMEM_HEAP_AREA_SIZE cfg) c res live1 (memory j) (memory j') /\ exists ts pages fc, rep j' ts pages fc (hold c res live1)
  end.

Lemma size_aligned s : size_ok s -> 0 < s <= jmem_align s.
Proof. intros Hs. destruct (align_twice s Hs) as [_ H]. unfold size_ok in Hs. lia. Qed.

Lemma alloc_call_ok p j ts pages fc live s : p = JMEM_PRESSURE_HIGH \/ p = JMEM_PRESSURE_FULL -> size_ok s -> rep j ts pages fc live ->
  gc_allocated cfg None j live s p (jmem_heap_gc_and_alloc_block cfg low_pressure_runs s p j).
Proof.
  intros Hp Hs H. pose proof (size_aligned s Hs) as Hs'. eapply gc_and_alloc_ok; [exact Hcfg | now apply heap_alloc_ok | lia | exact Hp | exact H].
Qed.

Lemma exec_alloc j ts pages fc live s : size_ok s -> rep j ts pages fc live -> call_ok (ALLOC_BLOCK s) j live (exec (ALLOC_BLOCK s) j).
Proof.
  intros Hs H. pose proof (alloc_call_ok JMEM_PRESSURE_FULL j ts pages fc live s ltac:(now right) Hs H) as Ha. cbn [exec]. unfold jmem_heap_alloc_block.
  destruct (jmem_heap_gc_and_alloc_block _ _ _ _ j) as [[p|] j'| |]; cbn in Ha |- *; try exact I; [| destruct Ha as [_ Ha]; now destruct (Ha eq_refl) | exact Ha].
  destruct Ha as [(live1 & [Hc Hk] & Hn & _ & _ & ts1 & pages1 & fc1 & Hr) _]. exists live1. splits; [exact Hc | exact Hk | exists p; split; [reflexivity | eapply live_fresh; eassumption] | now exists ts1, pages1, fc1].
Qed.

Lemma exec_alloc_null j ts pages fc live s : size_ok s -> rep j ts pages fc live -> call_ok (ALLOC_BLOCK_NULL_ON_ERROR s) j live (exec (ALLOC_BLOCK_NULL_ON_ERROR s) j).
Proof.
  intros Hs H. pose proof (alloc_call_ok JMEM_PRESSURE_HIGH j ts pages fc live s ltac:(now left) Hs H) as Ha. cbn [exec]. unfold jmem_heap_alloc_block_null_on_error.
  destruct (jmem_heap_gc_and_alloc_block _ _ _ _ j) as [[p|] j'| |]; cbn in Ha |- *; [| | discriminate | exact Ha]; destruct Ha as [(live1 & [Hc Hk] & Ha) _]; exists live1.
  - destruct Ha as (Hn & _ & _ & ts1 & pages1 & fc1 & Hr). splits; [exact Hc | exact Hk | | now exists ts1, pages1, fc1].
    intros q E. injection E as <-. eapply live_fresh; eassumption.
  - destruct Ha as (ts1 & pages1 & fc1 & Hr & _). splits; [exact Hc | exact Hk | discriminate | now exists ts1, pages1, fc1].
Qed.

Lemma align_small s : size_ok s -> (JMEM_CELLOCATOR_CELL_SIZE < jmem_align s <-> JMEM_CELLOCATOR_CELL_SIZE < s).
Proof.
  intros Hs. destruct (align_bounds s Hs) as [Hb [k Hk]]. unfold JMEM_CELLOCATOR_CELL_SIZE, JMEM_ALIGNMENT in *. lia.
Qed.

Lemma exec_realloc j ts pages fc live ptr s new : held live (engine j) ptr s -> size_ok s -> size_ok new -> rep j ts pages fc live ->
  call_ok (REALLOC_BLOCK ptr s new) j live (exec (REALLOC_BLOCK ptr s new) j).
Proof.
  intros [Hl Hg] Hs Hn H. pose proof (heap_config_ok _ Hcfg) as Hheap.
  pose proof (realloc_block_ok cfg Hcfg Hheap low_pressure_runs j ts pages fc live ptr s new H Hl Hg (proj2 Hs) Hn) as Hr. cbn [exec].
  destruct (jmem_heap_realloc_block _ _ _ _ _ j) as [res j'| |]; cbn in Hr |- *; [| exact I | exact Hr]. destruct Hr as (live1 & Hc & Hk & Hres).
  exists live1. split; [exact Hc |]. destruct res as [p|].
  - destruct Hres as (Hp & _ & Hcopy & ts1 & pages1 & fc1 & Hr). splits; [exact Hk | eapply live_fresh; eassumption | exact Hcopy | now exists ts1, pages1, fc1].
  - destruct Hres as ([Hnew Hold] & ts1 & pages1 & fc1 & Hr). splits; [exact Hk | | now apply align_small | now exists ts1, pages1, fc1].
    destruct (align_twice new Hn) as [_ Hle]. lia.
Qed.

Lemma exec_free j ts pages fc live ptr s : held live (engine j) ptr s -> rep j ts pages fc live -> call_ok (FREE_BLOCK ptr s) j live (exec (FREE_BLOCK ptr s) j).
Proof.
  intros [Hl Hg] H. destruct (free_block_spec cfg None Hcfg j ts pages fc live ptr s s H Hl eq_refl Hg) as (j' & ts' & fc' & Hd & Hr & Hk & Hu); [discriminate |].
  cbn [exec]. erewrite bind_done by exact Hd. exists live. cbn [spec_collect result_ok hold]. splits; [reflexivity | exact Hu | exact Hk | now exists ts', pages, fc'].
Qed.

Lemma exec_write j ts pages fc live ptr k w : permitted (WRITE ptr k w) live (engine j) -> rep j ts pages fc live ->
  call_ok (WRITE ptr k w) j live (exec (WRITE ptr k w) j).
Proof.
  intros (s & Hl & Hk) H. cbn [exec]. unfold write_slot. erewrite bind_done by reflexivity.
  destruct (rep_write cfg H ptr s (<[ptr + k := DATA w]> (memory j)) Hl) as [Hr Hkeep]; [intros a Ha; apply lookup_insert_ne; lia |].
  exists live. cbn [spec_collect result_ok hold]. splits; [reflexivity | reflexivity | exact Hkeep | apply lookup_insert_eq | | now exists ts, pages, fc].
  intros t a _ _ Ha. now apply lookup_insert_ne.
Qed.

(** Only what the engine knows of its blocks changes *)
Lemma engine_rep j ts pages fc live e' : rep j ts pages fc live -> NoDup (pending e').*1 -> (forall o s, (o, s) ∈ pending e' -> live !! o = Some s) ->
  rep (mk_jmem (memory j) (jmem_heap_list_skip_p j) (jmem_heap_allocated_size j) (jmem_heap_limit j) (cell_pages j) (free_cells j) e') ts pages fc live.
Proof.
  intros H Hnd He. split; cbn [memory cell_pages free_cells engine]; try apply H; try assumption; [| discriminate].
  apply (rep_no_heap_write cfg None j ts (memory j)); [apply H | reflexivity].
Qed.

Lemma exec_drop j ts pages fc live ptr s : held live (engine j) ptr s -> rep j ts pages fc live -> call_ok (DROP ptr s) j live (exec (DROP ptr s) j).
Proof.
  intros [Hl Hg] H. exists live. cbn [spec_collect result_ok hold]. splits; [reflexivity | reflexivity | now intros o t a _ _ |]. exists ts, pages, fc.
  apply engine_rep; [assumption | |]; cbn.
  - constructor; [assumption | apply H].
  - intros o t Ho. apply elem_of_cons in Ho as [E|Ho]; [now injection E as -> -> | now apply (rep_unreachable _ _ _ _ _ _ H)].
Qed.

Lemma exec_keep_hashmap j ts pages fc live ptr s : held live (engine j) ptr s -> rep j ts pages fc live -> call_ok (KEEP_HASHMAP ptr s) j live (exec (KEEP_HASHMAP ptr s) j).
Proof.
  intros [Hl Hg] H. exists live. cbn [spec_collect result_ok hold]. splits; [reflexivity | reflexivity | now intros o t a _ _ |]. exists ts, pages, fc.
  assert (Hp : pending (mk_engine (unreachable (engine j)) ((ptr, s) :: hashmaps (engine j))) ≡ₚ (ptr, s) :: pending (engine j)) by (unfold pending; cbn; now rewrite Permutation_middle).
  apply engine_rep; [assumption | rewrite Hp; cbn; constructor; [assumption | apply H] |].
  intros o t. rewrite Hp, elem_of_cons. intros [E|Ho]; [now injection E as -> -> | now apply (rep_unreachable _ _ _ _ _ _ H)].
Qed.

Lemma exec_take_hashmap j ts pages fc live ptr s : (ptr, s) ∈ hashmaps (engine j) -> rep j ts pages fc live -> call_ok (TAKE_HASHMAP ptr s) j live (exec (TAKE_HASHMAP ptr s) j).
Proof.
  intros _ H. exists live. cbn [spec_collect result_ok hold]. splits; [reflexivity | reflexivity | now intros o t a _ _ |]. exists ts, pages, fc.
  assert (Hsub : sublist (pending (mk_engine (unreachable (engine j)) (remove_block ptr (hashmaps (engine j))))) (pending (engine j))).
  { unfold pending, remove_block. cbn. apply sublist_app; [reflexivity | apply sublist_filter]. }
  apply engine_rep; [assumption | |].
  - eapply sublist_NoDup; [apply (rep_unreachable_nodup _ _ _ _ _ _ H) | now apply fmap_sublist].
  - intros o t Ho. apply (rep_unreachable _ _ _ _ _ _ H). eapply elem_of_sublist; eassumption.
Qed.

Lemma exec_collect j ts pages fc live : rep j ts pages fc live -> call_ok COLLECT j live (exec COLLECT j).
Proof.
  intros H. destruct (gc_run_spec cfg None Hcfg low_pressure_runs j ts pages fc live H) as (j' & ts' & fc' & live' & Hd & Hr & [Hc Hk] & Hu).
  cbn [exec]. erewrite bind_done by exact Hd. exists live'. cbn [spec_collect result_ok hold]. splits; [| exact Hu | exact Hk | now exists ts', pages, fc'].
  destruct Hc as [-> _]. rewrite Hu. unfold gone. cbn. destruct (hashmaps (engine j)); now rewrite app_nil_r.
Qed.

Lemma exec_ok c j ts pages fc live : rep j ts pages fc live -> permitted c live (engine j) -> call_ok c j live (exec c j).
Proof.
  intros H Hp. destruct c; cbn in Hp.
  - eapply exec_alloc; eassumption.
  - eapply exec_alloc_null; eassumption.
  - eapply exec_realloc; [apply Hp | apply Hp | apply Hp | exact H].
  - eapply exec_free; eassumption.
  - eapply exec_write; eassumption.
  - eapply exec_drop; eassumption.
  - eapply exec_keep_hashmap; eassumption.
  - eapply exec_take_hashmap; eassumption.
  - eapply exec_collect; eassumption.
Qed.

Lemma survivors_collect c j j' live live1 : spec_collect c live (engine j) live1 (engine j') -> survivors c j j' live = live1.
Proof.
  destruct c; cbn; try (now intros [-> _]).
  intros [-> E]. rewrite E. unfold gone. cbn. destruct (hashmaps (engine j)); now rewrite app_nil_r.
Qed.

(** *** Runs *)

Lemma machine_step_ok st e st' ts pages fc : machine_step st e st' -> rep st.1 ts pages fc st.2 ->
  spec_step (JMEM_HEAP_AREA_SIZE cfg) (abstract st) e (abstract st') /\ exists ts' pages' fc', rep st'.1 ts' pages' fc' st'.2.
Proof.
  intros [c res j live j' Hp Hd] H. pose proof (exec_ok c j ts pages fc live H Hp) as Hc. rewrite Hd in Hc. destruct Hc as (live1 & Hcol & Hres & Hr).
  rewrite (survivors_collect c j j' live live1 Hcol). split; [| exact Hr]. unfold abstract. cbn [fst snd]. now apply (SPEC_STEP _ c res live (engine j) _ live1).
Qed.

Lemma run_ok es st : steps machine_step start es st ->
  steps (spec_step (JMEM_HEAP_AREA_SIZE cfg)) (abstract start) es (abstract st) /\ exists ts pages fc, rep st.1 ts pages fc st.2.
Proof.
  induction 1 as [|es st1 e st2 Hs IH He].
  - split; [constructor |]. exists [FREE (JMEM_HEAP_AREA_SIZE cfg)], [], []. exact init_rep.
  - destruct IH as (Hspec & ts & pages & fc & Hr). destruct (machine_step_ok _ _ _ _ _ _ He Hr) as [Hstep Hr']. split; [| exact Hr'].
    econstructor; eassumption.
Qed.

(** *** The properties *)

(** C1: every run of the memory manager from jmem_heap_init is a run of the
    specification: the calls have the same results, and the clients' blocks,
    the garbage and memory are those of the specification. *)
Theorem jmem_refines es st : steps machine_step start es st -> steps (spec_step (JMEM_HEAP_AREA_SIZE cfg)) (abstract start) es (abstract st).
Proof. intros H. exact (proj1 (run_ok es st H)). Qed.

(** C2: after any run, a permitted call returns, or ends the process where
    memory is exhausted and the call must not return NULL; it never reads a
    header that is not there. *)
Theorem jmem_calls_safe es j live c : steps machine_step start es (j, live) -> permitted c live (engine j) ->
  match exec c j with DONE _ _ => True | FATAL => may_end c | FAULT => False end.
Proof.
  intros H Hp. destruct (run_ok _ _ H) as (_ & ts & pages & fc & Hr). pose proof (exec_ok c j ts pages fc live Hr Hp) as Hc.
  destruct (exec c j); [exact I | exact Hc | exact Hc].
Qed.

(** After any run the blocks in use are aligned, lie in the heap area and
    do not overlap. *)
Theorem jmem_blocks_apart es j live o s : steps machine_step start es (j, live) -> live !! o = Some s ->
  (JMEM_ALIGNMENT | o) /\ 0 <= o /\ 0 < s /\ o + s <= JMEM_HEAP_AREA_SIZE cfg
  /\ forall o' s', live !! o' = Some s' -> o' <> o -> o + s <= o' \/ o' + s' <= o.
Proof.
  intros H Hl. destruct (run_ok _ _ H) as (_ & ts & pages & fc & Hr). cbn [fst snd] in Hr. destruct (live_in_area cfg Hr o s Hl) as (H1 & H2 & H3).
  splits; try assumption; [eapply live_aligned; eassumption |]. intros o' s' Ho' Hne.
  pose proof (align_extent s). pose proof (align_extent s'). destruct (rep_live _ _ _ _ _ _ Hr o s Hl) as (Hs & _). destruct (rep_live _ _ _ _ _ _ Hr o' s' Ho') as (Hs' & _).
  destruct (live_disjoint cfg Hr o s o' s' Hl Ho' ltac:(congruence)); lia.
Qed.

(** After any run the allocated size is at most the size of the area, and
    the limit for the next collection lies between it and one gc_limit above it. *)
Theorem jmem_accounts es j live : steps machine_step start es (j, live) ->
  0 <= jmem_heap_allocated_size j <= JMEM_HEAP_AREA_SIZE cfg
  /\ jmem_heap_allocated_size j <= jmem_heap_limit j <= jmem_heap_allocated_size j + gc_limit cfg.
Proof.
  intros H. destruct (run_ok _ _ H) as (_ & ts & pages & fc & Hr). destruct (rep_heap _ _ _ _ _ _ Hr) as [HL [Ha Hlim] _]. cbn [fst snd reserve] in *.
  pose proof (used_bounds ts (list_tiles _ _ _ HL)). rewrite (list_total _ _ _ HL) in *. lia.
Qed.

(** C3: jmem_heap_alloc_block_null_on_error returns NULL only after all garbage
    was collected and all hash maps were released, when no free region is large enough for the block, or, for a
    small block, for a page of cells. *)
Theorem jmem_null_means_exhausted es j live s j' : steps machine_step start es (j, live) -> size_ok s ->
  jmem_heap_alloc_block_null_on_error cfg low_pressure_runs s j = DONE None j' ->
  engine j' = mk_engine [] [] /\ exists ts, heap_ok cfg None j' ts /\ forall o n, (o, n) ∈ regions 0 ts ->
    n < if s <=? JMEM_CELLOCATOR_CELL_SIZE then page_size cfg else jmem_align s.
Proof.
  intros H Hs Hd. destruct (run_ok _ _ H) as (_ & ts & pages & fc & Hr). cbn [fst snd] in Hr.
  pose proof (alloc_call_ok JMEM_PRESSURE_HIGH j ts pages fc live s ltac:(now left) Hs Hr) as Ha. unfold jmem_heap_alloc_block_null_on_error in Hd. rewrite Hd in Ha.
  destruct Ha as [(live1 & _ & ts1 & pages1 & fc1 & Hr1 & He) Hn]. split; [now apply Hn |]. exists ts1. split; [apply Hr1 |]. intros o n Ho.
  pose proof (align_small s Hs). unfold exhausted in He. destruct (Z.leb_spec s JMEM_CELLOCATOR_CELL_SIZE).
  - rewrite (proj2 (Z.leb_le _ _)) in He by lia. eapply first_fit_none; eassumption.
  - rewrite (proj2 (Z.leb_gt _ _)) in He by lia. eapply first_fit_none; eassumption.
Qed.
End Machine.

(** ** Compressed pointers *)

(** The compressed pointer to a block in use is not the compressed NULL, and
    the pointer and three tag bits stored with it are found again; with 16-bit
    pointers in a heap of at most 512 kilobytes. *)
Theorem jmem_pointers_roundtrip cfg low es j live o s bits tag : jmem_config_ok cfg -> steps (machine_step cfg low) (start cfg) es (j, live) ->
  live !! o = Some s -> bits = 16 \/ bits = 32 -> (bits = 16 -> vm_heap_size cfg <= 524288) -> 0 <= tag < 8 ->
  let cp := jmem_compress_pointer bits o in
  let tagged := JMEM_CP_SET_NON_NULL_POINTER_TAG bits o tag in
  cp <> JMEM_CP_NULL /\ jmem_decompress_pointer cp = o
  /\ JMEM_CP_GET_NON_NULL_POINTER_FROM_POINTER_TAG tagged = o /\ JMEM_CP_GET_POINTER_TAG_BITS tagged = tag.
Proof.
  intros Hcfg H Hl Hb Hsize Ht cp tagged. destruct (run_ok _ _ Hcfg _ _ H) as (_ & ts & pages & fc & Hr). cbn [fst snd] in Hr.
  destruct (live_in_area cfg Hr o s Hl) as (H1 & H2 & H3). destruct (live_aligned cfg _ _ _ _ _ o s Hr Hl) as [q Hq]. unfold JMEM_ALIGNMENT in Hq. rewrite Z.mul_comm in Hq. subst o.
  pose proof (heap_size_range _ (heap_config_ok _ Hcfg)) as Hh. unfold JMEM_HEAP_AREA_SIZE, JMEM_ALIGNMENT in *.
  assert (Hlt : q + 1 < 2 ^ bits) by (destruct Hb as [E|E]; rewrite E; cbn; [specialize (Hsize E) | ]; lia).
  unfold cp, tagged. rewrite tagged_block, compress_block by (assumption || lia). unfold JMEM_CP_NULL. rewrite decompress_block by lia.
  destruct (tagged_pointer q tag) as [Hp Htag]; [lia | lia | lia |]. splits; try assumption; lia.
Qed.

(** ** Concrete runs *)

#[export] Instance held_dec live e ptr s : Decision (held live e ptr s).
Proof. unfold held. apply _. Defined.
#[export] Instance permitted_dec c live e : Decision (permitted c live e).
Proof.
  destruct c; cbn; unfold size_ok; try apply _.
  destruct (live !! ptr) as [s|] eqn:E.
  - destruct (decide (0 <= offset < s)) as [H|H]; [left; now exists s | right; intros (t & Ht & H'); apply H; now injection Ht as ->].
  - right. intros (t & Ht & _). discriminate.
Defined.

Section Play.
Context (cfg : jmem_config).
Context (low_pressure_runs : jmem_context -> bool).

Fixpoint play (cs : list call) (st : jmem_context * gmap Z Z) : option (list (call * option Z) * (jmem_context * gmap Z Z)) :=
  match cs with
  | [] => Some ([], st)
  | c :: cs =>
      if decide (permitted c st.2 (engine st.1)) then
        match exec cfg low_pressure_runs c st.1 with
        | DONE res j => match play cs (j, hold c res (survivors c st.1 j st.2)) with Some (es, st') => Some ((c, res) :: es, st') | None => None end
        | _ => None
        end
      else None
  end.

Lemma play_steps cs : forall es0 st es st', steps (machine_step cfg low_pressure_runs) (start cfg) es0 st -> play cs st = Some (es, st') ->
  steps (machine_step cfg low_pressure_runs) (start cfg) (es0 ++ es) st'.
Proof.
  induction cs as [|c cs IH]; intros es0 [j live] es st' H0 E; cbn [play] in E.
  - injection E as <- <-. now rewrite app_nil_r.
  - destruct (decide _) as [Hp|]; [| discriminate]. cbn [fst snd] in *. destruct (exec _ _ c j) as [res j1| |] eqn:Ed; [| discriminate | discriminate].
    destruct (play cs _) as [[es1 st1]|] eqn:Ep; [| discriminate]. injection E as <- <-.
    change ((c, res) :: es1) with ([(c, res)] ++ es1). rewrite app_assoc. eapply IH; [| exact Ep]. econstructor; [exact H0 |]. now constructor.
Qed.

(** The run of [cs] from the start, with its results *)
Definition played (cs : list call) := default ([], start cfg) (play cs (start cfg)).

Lemma played_steps cs : (match play cs (start cfg) with Some _ => true | None => false end) = true ->
  steps (machine_step cfg low_pressure_runs) (start cfg) (played cs).1 ((played cs).2.1, (played cs).2.2).
Proof.
  unfold played. destruct (play cs (start cfg)) as [[es [j live]]|] eqn:E; [intros _ | discriminate]. cbn.
  apply (play_steps cs [] (start cfg)); [constructor | exact E].
Qed.
End Play.

(** A heap of 512 bytes with pages of four cells *)
Definition demo_config : jmem_config := mk_config 520 128 4.
Definition demo_calls : list call :=
  [ALLOC_BLOCK 40; ALLOC_BLOCK 10; WRITE 0 8 77; REALLOC_BLOCK 0 40 100; ALLOC_BLOCK 50; DROP 160 10; COLLECT; FREE_BLOCK 296 50; ALLOC_BLOCK 20; WRITE 160 0 5].
Definition demo_result := played demo_config (fun _ => false) demo_calls.

Lemma demo_config_ok : jmem_config_ok demo_config.
Proof. split; [split; [now split | exists 64; reflexivity | now split] | easy | reflexivity]. Qed.

Lemma demo_steps : steps (machine_step demo_config (fun _ => false)) (start demo_config) demo_result.1 (demo_result.2.1, demo_result.2.2).
Proof. apply played_steps. now vm_compute. Qed.

Lemma jmem_refines_witness : steps (spec_step 512) (abstract (start demo_config)) demo_result.1 (abstract (demo_result.2.1, demo_result.2.2)).
Proof. exact (jmem_refines demo_config (fun _ => false) demo_config_ok demo_result.1 (demo_result.2.1, demo_result.2.2) demo_steps). Defined.

Lemma jmem_calls_safe_witness : match exec demo_config (fun _ => false) (REALLOC_BLOCK 160 20 60) demo_result.2.1 with DONE _ _ => True | FATAL => True | FAULT => False end.
Proof.
  assert (Hp : permitted (REALLOC_BLOCK 160 20 60) demo_result.2.2 (engine demo_result.2.1)) by (apply (bool_decide_unpack _); vm_compute; exact I).
  exact (jmem_calls_safe demo_config (fun _ => false) demo_config_ok demo_result.1 demo_result.2.1 demo_result.2.2 (REALLOC_BLOCK 160 20 60) demo_steps Hp).
Defined.

Lemma jmem_blocks_apart_witness : demo_result.2.2 !! 192 = Some 100 /\ (JMEM_ALIGNMENT | 192).
Proof.
  assert (H : demo_result.2.2 !! 192 = Some 100) by now vm_compute. split; [exact H |].
  exact (proj1 (jmem_blocks_apart demo_config (fun _ => false) demo_config_ok demo_result.1 demo_result.2.1 demo_result.2.2 192 100 demo_steps H)).
Defined.

Lemma jmem_accounts_witness : 0 <= jmem_heap_allocated_size demo_result.2.1 <= 512.
Proof. exact (proj1 (jmem_accounts demo_config (fun _ => false) demo_config_ok demo_result.1 demo_result.2.1 demo_result.2.2 demo_steps)). Defined.

Lemma jmem_pointers_roundtrip_witness : jmem_decompress_pointer (jmem_compress_pointer 16 192) = 192.
Proof.
  apply (jmem_pointers_roundtrip demo_config (fun _ => false) demo_result.1 demo_result.2.1 demo_result.2.2 192 100 16 5 demo_config_ok demo_steps); [now vm_compute | now left | cbn; lia | lia].
Defined.

(** The heap is full: the request is larger than what is left *)
Lemma jmem_null_means_exhausted_witness : exists j', exec demo_config (fun _ => false) (ALLOC_BLOCK_NULL_ON_ERROR 400) demo_result.2.1 = DONE None j' /\ engine j' = mk_engine [] [].
Proof.
  assert (E : exists j', exec demo_config (fun _ => false) (ALLOC_BLOCK_NULL_ON_ERROR 400) demo_result.2.1 = DONE None j') by (eexists; vm_compute; reflexivity).
  destruct E as [j' E]. exists j'. split; [exact E |].
  exact (proj1 (jmem_null_means_exhausted demo_config (fun _ => false) demo_config_ok demo_result.1 demo_result.2.1 demo_result.2.2 400 j' demo_steps ltac:(split; reflexivity || discriminate) E)).
Defined.

(** ** What the model shows *)

(** Two pages of cells side by side, and nothing else: jmem_heap_finalize gives
    the second one back to the heap, and then looks for the page of the first
    one in a list that still goes through the header of the second *)
Definition two_pages := played (mk_config 448 64 2) (fun _ => false) [ALLOC_BLOCK 8; ALLOC_BLOCK 8; ALLOC_BLOCK 8; FREE_BLOCK 24 8; FREE_BLOCK 56 8; FREE_BLOCK 144 8].

Lemma finalize_reads_released_page : steps (machine_step (mk_config 448 64 2) (fun _ => false)) (start (mk_config 448 64 2)) two_pages.1 (two_pages.2.1, two_pages.2.2)
  /\ two_pages.2.2 = ∅ /\ jmem_heap_finalize (mk_config 448 64 2) two_pages.2.1 = FAULT.
Proof. splits; [apply played_steps; now vm_compute | now vm_compute | now vm_compute]. Qed.

(** A block of 400 bytes is shrunk to 20: there is no room for a page of cells
    while the block is still in use, so the result is NULL, and the block is gone *)
Definition large_block := played (mk_config 448 128 4) (fun _ => false) [ALLOC_BLOCK 400].

Lemma realloc_shrink_loses_block : steps (machine_step (mk_config 448 128 4) (fun _ => false)) (start (mk_config 448 128 4)) large_block.1 (large_block.2.1, large_block.2.2)
  /\ large_block.2.2 = {[0 := 400]}
  /\ exists j', jmem_heap_realloc_block (mk_config 448 128 4) (fun _ => false) 0 400 20 large_block.2.1 = DONE None j' /\ jmem_heap_allocated_size j' = 0.
Proof.
  splits; [apply played_steps; now vm_compute | now vm_compute |]. eexists. split; [vm_compute; reflexivity | reflexivity].
Qed.
