(* ===== verification/Values.v ===== *)
(** * Engine values: src/jjs-core/ecma/base/ecma-helpers-value.c

    A value is a 32-bit word.  Its three low bits are its type; the other bits
    are a small integer, a simple value, the contents of a direct string, or the
    compressed pointer to a block of the heap.  Pointers are addresses of blocks
    as in Jmem, offsets from the heap area. *)
From Stdlib Require Import ZArith Lia Bool.
From S2P Require Import Prelude JmemHeap JmemPointers.
#[local] Open Scope Z_scope.

(** ** Words (ecma-globals.h) *)

Definition ECMA_TYPE_DIRECT : Z := 0.
Definition ECMA_TYPE_STRING : Z := 1.
Definition ECMA_TYPE_FLOAT : Z := 2.
Definition ECMA_TYPE_OBJECT : Z := 3.
Definition ECMA_TYPE_SYMBOL : Z := 4.
Definition ECMA_TYPE_DIRECT_STRING : Z := 5.
Definition ECMA_TYPE_BIGINT : Z := 6.
Definition ECMA_TYPE_ERROR : Z := 7.

Definition ECMA_VALUE_TYPE_MASK : Z := 7.
Definition ECMA_VALUE_SHIFT : Z := 3.
Definition ECMA_DIRECT_TYPE_MASK : Z := Z.lor (Z.shiftl 1 ECMA_VALUE_SHIFT) ECMA_VALUE_TYPE_MASK.
Definition ECMA_DIRECT_TYPE_INTEGER_VALUE : Z := Z.lor (Z.shiftl 0 ECMA_VALUE_SHIFT) ECMA_TYPE_DIRECT.
Definition ECMA_DIRECT_TYPE_SIMPLE_VALUE : Z := Z.lor (Z.shiftl 1 ECMA_VALUE_SHIFT) ECMA_TYPE_DIRECT.
Definition ECMA_DIRECT_SHIFT : Z := 4.

Definition ECMA_MAKE_VALUE (value : Z) : Z := Z.lor (u32 (Z.shiftl value ECMA_DIRECT_SHIFT)) ECMA_DIRECT_TYPE_SIMPLE_VALUE.

Definition ECMA_VALUE_EMPTY : Z := ECMA_MAKE_VALUE 0.
Definition ECMA_VALUE_ERROR : Z := ECMA_MAKE_VALUE 1.
Definition ECMA_VALUE_FALSE : Z := ECMA_MAKE_VALUE 2.
Definition ECMA_VALUE_TRUE : Z := ECMA_MAKE_VALUE 3.
Definition ECMA_VALUE_UNDEFINED : Z := ECMA_MAKE_VALUE 4.
Definition ECMA_VALUE_NULL : Z := ECMA_MAKE_VALUE 5.
Definition ECMA_VALUE_NOT_FOUND : Z := ECMA_MAKE_VALUE 7.
Definition ECMA_VALUE_ARRAY_HOLE : Z := ECMA_MAKE_VALUE 8.
Definition ECMA_BIGINT_ZERO : Z := ECMA_TYPE_BIGINT.

Definition ECMA_INTEGER_NUMBER_MAX : Z := 134217727.
Definition ECMA_INTEGER_NUMBER_MIN : Z := -134217728.
Definition ECMA_IS_INTEGER_NUMBER (num : Z) : bool := (ECMA_INTEGER_NUMBER_MIN <=? num) && (num <=? ECMA_INTEGER_NUMBER_MAX).

(** The 32-bit two's complement number of a word *)
Definition s32 (w : Z) : Z := if u32 w <? 2147483648 then u32 w else u32 w - B32.

(** *** Direct strings *)

Definition ECMA_DIRECT_STRING_PTR : Z := 0.
Definition ECMA_DIRECT_STRING_MAGIC : Z := 1.
Definition ECMA_DIRECT_STRING_UINT : Z := 2.
Definition ECMA_DIRECT_STRING_SPECIAL : Z := 3.
Definition ECMA_DIRECT_STRING_MAX_IMM : Z := 134217727.
Definition ECMA_DIRECT_STRING_SHIFT : Z := ECMA_VALUE_SHIFT + 2.
Definition ECMA_DIRECT_STRING_MASK : Z := Z.lor ECMA_DIRECT_TYPE_MASK (Z.shiftl 3 ECMA_VALUE_SHIFT).

Definition ECMA_CREATE_DIRECT_STRING (type value : Z) : Z :=
  u64 (Z.lor (Z.lor ECMA_TYPE_DIRECT_STRING (Z.shiftl type ECMA_VALUE_SHIFT)) (Z.shiftl value ECMA_DIRECT_STRING_SHIFT)).
Definition ECMA_IS_DIRECT_STRING (string_p : Z) : bool := negb (Z.land string_p 1 =? 0).
Definition ECMA_IS_DIRECT_STRING_WITH_TYPE (string_p type : Z) : bool := Z.land string_p ECMA_DIRECT_STRING_MASK =? ECMA_CREATE_DIRECT_STRING type 0.
Definition ECMA_GET_DIRECT_STRING_TYPE (string_p : Z) : Z := Z.land (Z.shiftr string_p ECMA_VALUE_SHIFT) 3.
Definition ECMA_GET_DIRECT_STRING_VALUE (string_p : Z) : Z := Z.shiftr string_p ECMA_DIRECT_STRING_SHIFT.

(** ** Types *)

Definition ecma_get_value_type_field (value : Z) : Z := Z.land value ECMA_VALUE_TYPE_MASK.

Definition ecma_pointer_to_ecma_value (ptr : Z) : Z := u32 (Z.shiftl (jmem_compress_pointer 32 ptr) ECMA_VALUE_SHIFT).
Definition ecma_get_pointer_from_ecma_value (value : Z) : Z := jmem_decompress_pointer (Z.shiftr value ECMA_VALUE_SHIFT).

Definition ecma_is_value_direct (value : Z) : bool := ecma_get_value_type_field value =? ECMA_TYPE_DIRECT.
Definition ecma_is_value_simple (value : Z) : bool := Z.land value ECMA_DIRECT_TYPE_MASK =? ECMA_DIRECT_TYPE_SIMPLE_VALUE.
Definition ecma_is_value_equal_to_simple_value (value simple_value : Z) : bool := value =? simple_value.
Definition ecma_is_value_empty (value : Z) : bool := ecma_is_value_equal_to_simple_value value ECMA_VALUE_EMPTY.
Definition ecma_is_value_undefined (value : Z) : bool := ecma_is_value_equal_to_simple_value value ECMA_VALUE_UNDEFINED.
Definition ecma_is_value_null (value : Z) : bool := ecma_is_value_equal_to_simple_value value ECMA_VALUE_NULL.
Definition ecma_is_value_true (value : Z) : bool := ecma_is_value_equal_to_simple_value value ECMA_VALUE_TRUE.
Definition ecma_is_value_false (value : Z) : bool := ecma_is_value_equal_to_simple_value value ECMA_VALUE_FALSE.
Definition ecma_is_value_boolean (value : Z) : bool := ecma_is_value_true (Z.lor value (Z.shiftl 1 ECMA_DIRECT_SHIFT)).
Definition ecma_is_value_found (value : Z) : bool := negb (value =? ECMA_VALUE_NOT_FOUND).
Definition ecma_is_value_array_hole (value : Z) : bool := ecma_is_value_equal_to_simple_value value ECMA_VALUE_ARRAY_HOLE.
Definition ecma_is_value_integer_number (value : Z) : bool := Z.land value ECMA_DIRECT_TYPE_MASK =? ECMA_DIRECT_TYPE_INTEGER_VALUE.
Definition ecma_are_values_integer_numbers (first_value second_value : Z) : bool :=
  Z.land (Z.lor first_value second_value) ECMA_DIRECT_TYPE_MASK =? ECMA_DIRECT_TYPE_INTEGER_VALUE.
Definition ecma_is_value_float_number (value : Z) : bool := ecma_get_value_type_field value =? ECMA_TYPE_FLOAT.
Definition ecma_is_value_number (value : Z) : bool := ecma_is_value_integer_number value || ecma_is_value_float_number value.
Definition ecma_is_value_string (value : Z) : bool := Z.land value (ECMA_VALUE_TYPE_MASK - 4) =? ECMA_TYPE_STRING.
Definition ecma_is_value_symbol (value : Z) : bool := ecma_get_value_type_field value =? ECMA_TYPE_SYMBOL.
Definition ecma_is_value_bigint (value : Z) : bool := ecma_get_value_type_field value =? ECMA_TYPE_BIGINT.
Definition ecma_is_value_prop_name (value : Z) : bool := ecma_is_value_string value || ecma_is_value_symbol value.
Definition ecma_is_value_direct_string (value : Z) : bool := ecma_get_value_type_field value =? ECMA_TYPE_DIRECT_STRING.
Definition ecma_is_value_non_direct_string (value : Z) : bool := ecma_get_value_type_field value =? ECMA_TYPE_STRING.
Definition ecma_is_value_object (value : Z) : bool := ecma_get_value_type_field value =? ECMA_TYPE_OBJECT.
Definition ecma_is_value_exception (value : Z) : bool := ecma_get_value_type_field value =? ECMA_TYPE_ERROR.

(** ** Construction *)

Definition ecma_make_boolean_value (boolean_value : bool) : Z := if boolean_value then ECMA_VALUE_TRUE else ECMA_VALUE_FALSE.
Definition ecma_make_integer_value (integer_value : Z) : Z := Z.lor (u32 (Z.shiftl (u32 integer_value) ECMA_DIRECT_SHIFT)) ECMA_DIRECT_TYPE_INTEGER_VALUE.
Definition ecma_make_float_value (ecma_num_p : Z) : Z := Z.lor (ecma_pointer_to_ecma_value ecma_num_p) ECMA_TYPE_FLOAT.
Definition ecma_make_string_value (ecma_string_p : Z) : Z :=
  if negb (Z.land ecma_string_p ECMA_VALUE_TYPE_MASK =? 0) then u32 ecma_string_p
  else Z.lor (ecma_pointer_to_ecma_value ecma_string_p) ECMA_TYPE_STRING.
Definition ecma_make_symbol_value (ecma_symbol_p : Z) : Z := Z.lor (ecma_pointer_to_ecma_value ecma_symbol_p) ECMA_TYPE_SYMBOL.
Definition ecma_make_magic_string_value (id : Z) : Z := u32 (ECMA_CREATE_DIRECT_STRING ECMA_DIRECT_STRING_MAGIC id).
Definition ecma_make_object_value (object_p : Z) : Z := Z.lor (ecma_pointer_to_ecma_value object_p) ECMA_TYPE_OBJECT.
Definition ecma_make_extended_primitive_value (primitive_p type : Z) : Z := Z.lor (ecma_pointer_to_ecma_value primitive_p) type.

Definition ecma_is_value_magic_string (value id : Z) : bool := value =? ecma_make_magic_string_value id.

(** ** Access *)

Definition ecma_get_integer_from_value (value : Z) : Z := Z.shiftr (s32 value) ECMA_DIRECT_SHIFT.
Definition ecma_get_pointer_from_float_value (value : Z) : Z := ecma_get_pointer_from_ecma_value value.
Definition ecma_get_string_from_value (value : Z) : Z :=
  if Z.land value ECMA_VALUE_TYPE_MASK =? ECMA_TYPE_DIRECT_STRING then value else ecma_get_pointer_from_ecma_value value.
Definition ecma_get_symbol_from_value (value : Z) : Z := ecma_get_pointer_from_ecma_value value.
Definition ecma_get_prop_name_from_value (value : Z) : Z :=
  if Z.land value ECMA_VALUE_TYPE_MASK =? ECMA_TYPE_DIRECT_STRING then value else ecma_get_pointer_from_ecma_value value.
Definition ecma_get_object_from_value (value : Z) : Z := ecma_get_pointer_from_ecma_value value.
Definition ecma_get_extended_primitive_from_value (value : Z) : Z := ecma_get_pointer_from_ecma_value value.
Definition ecma_invert_boolean_value (value : Z) : Z := Z.lxor value (Z.shiftl 1 ECMA_DIRECT_SHIFT).

(** ** Lemmas *)

(** Addresses of blocks *)
Definition is_block (p : Z) : Prop := 0 <= p <= B32 - 16 /\ (8 | p).

Lemma land_7 q r : 0 <= r < 8 -> Z.land (8 * q + r) 7 = r.
Proof. intros H. change 7 with (Z.ones 3). rewrite Z.land_ones by lia. change (2 ^ 3) with 8. zmod. Qed.
Lemma land_15 q r : 0 <= r < 16 -> Z.land (16 * q + r) 15 = r.
Proof. intros H. change 15 with (Z.ones 4). rewrite Z.land_ones by lia. change (2 ^ 4) with 16. zmod. Qed.
Lemma land_1 q r : 0 <= r < 2 -> Z.land (2 * q + r) 1 = r.
Proof. intros H. change 1 with (Z.ones 1) at 1. rewrite Z.land_ones by lia. change (2 ^ 1) with 2. zmod. Qed.

Lemma pointer_value p : is_block p -> ecma_pointer_to_ecma_value p = p + 8.
Proof.
  intros [Hr [q Hq]]. subst p. rewrite Z.mul_comm in *. unfold ecma_pointer_to_ecma_value, ECMA_VALUE_SHIFT.
  rewrite compress_block by (try tauto; cbn; lia). rewrite Z.shiftl_mul_pow2 by lia. change (2 ^ 3) with 8. rewrite u32_small by (unfold is_u32; lia). lia.
Qed.

Lemma tagged_value p t : is_block p -> 0 <= t < 8 -> Z.lor (ecma_pointer_to_ecma_value p) t = p + 8 + t.
Proof.
  intros Hp Ht. rewrite pointer_value by exact Hp. destruct Hp as [Hr [q ->]]. replace (q * 8 + 8) with (8 * (q + 1)) by lia.
  rewrite lor_tag by lia. lia.
Qed.

Lemma value_type p t : is_block p -> 0 <= t < 8 -> ecma_get_value_type_field (p + 8 + t) = t.
Proof. intros [Hr [q ->]] Ht. unfold ecma_get_value_type_field, ECMA_VALUE_TYPE_MASK. replace (q * 8 + 8 + t) with (8 * (q + 1) + t) by lia. now apply land_7. Qed.

Lemma value_pointer p t : is_block p -> 0 <= t < 8 -> ecma_get_pointer_from_ecma_value (p + 8 + t) = p.
Proof.
  intros [Hr [q ->]] Ht. unfold ecma_get_pointer_from_ecma_value, ECMA_VALUE_SHIFT. rewrite Z.shiftr_div_pow2 by lia. change (2 ^ 3) with 8.
  replace ((q * 8 + 8 + t) / 8) with (q + 1) by zmod. rewrite decompress_block by lia. lia.
Qed.

(** Every word of a direct string *)
Lemma direct_string_word type value : 0 <= type < 4 -> 0 <= value < 2 ^ 59 ->
  ECMA_CREATE_DIRECT_STRING type value = 5 + 8 * type + 32 * value.
Proof.
  intros Ht Hv. unfold ECMA_CREATE_DIRECT_STRING, ECMA_TYPE_DIRECT_STRING, ECMA_DIRECT_STRING_SHIFT, ECMA_VALUE_SHIFT.
  rewrite !Z.shiftl_mul_pow2 by lia. change (2 ^ 3) with 8. change (2 ^ (3 + 2)) with 32. change (2 ^ 59) with 576460752303423488 in Hv.
  rewrite (Z.lor_comm 5), (Z.mul_comm type), lor_tag by lia. rewrite Z.lor_comm, (Z.lor_comm _ (8 * type + 5)), Z.lor_comm.
  change 32 with (2 ^ 5). rewrite lor_mul_low by (cbn; lia). change (2 ^ 5) with 32. unfold u64. rewrite Z.mod_small by lia. lia.
Qed.

Lemma direct_string_fields type value : 0 <= type < 4 -> 0 <= value < 2 ^ 59 -> let p := ECMA_CREATE_DIRECT_STRING type value in
  ECMA_IS_DIRECT_STRING p = true /\ ECMA_GET_DIRECT_STRING_TYPE p = type /\ ECMA_GET_DIRECT_STRING_VALUE p = value
  /\ Z.land p ECMA_VALUE_TYPE_MASK = ECMA_TYPE_DIRECT_STRING
  /\ forall t, 0 <= t < 4 -> ECMA_IS_DIRECT_STRING_WITH_TYPE p t = (t =? type).
Proof.
  intros Ht Hv p. subst p. rewrite direct_string_word by assumption. splits.
  - unfold ECMA_IS_DIRECT_STRING. replace (5 + 8 * type + 32 * value) with (2 * (2 + 4 * type + 16 * value) + 1) by lia. now rewrite land_1 by lia.
  - unfold ECMA_GET_DIRECT_STRING_TYPE, ECMA_VALUE_SHIFT. rewrite Z.shiftr_div_pow2 by lia. change 3 with (Z.ones 2) at 2. rewrite Z.land_ones by lia.
    change (2 ^ 3) with 8. change (2 ^ 2) with 4. zmod.
  - unfold ECMA_GET_DIRECT_STRING_VALUE, ECMA_DIRECT_STRING_SHIFT, ECMA_VALUE_SHIFT. rewrite Z.shiftr_div_pow2 by lia. change (2 ^ (3 + 2)) with 32. zmod.
  - unfold ECMA_VALUE_TYPE_MASK, ECMA_TYPE_DIRECT_STRING. replace (5 + 8 * type + 32 * value) with (8 * (type + 4 * value) + 5) by lia. now rewrite land_7 by lia.
  - intros t Hbt. unfold ECMA_IS_DIRECT_STRING_WITH_TYPE. rewrite direct_string_word by (cbn; lia). change ECMA_DIRECT_STRING_MASK with (Z.ones 5).
    rewrite Z.land_ones by lia. change (2 ^ 5) with 32. replace ((5 + 8 * type + 32 * value) mod 32) with (5 + 8 * type) by zmod.
    destruct (Z.eqb_spec t type), (Z.eqb_spec (5 + 8 * type) (5 + 8 * t + 32 * 0)); lia || reflexivity.
Qed.

Lemma block_not_direct p : is_block p -> ECMA_IS_DIRECT_STRING p = false.
Proof. intros [_ [q ->]]. unfold ECMA_IS_DIRECT_STRING. replace (q * 8) with (2 * (4 * q) + 0) by lia. now rewrite land_1 by lia. Qed.

Lemma direct_not_block type value : 0 <= type < 4 -> 0 <= value < 2 ^ 59 -> ~ is_block (ECMA_CREATE_DIRECT_STRING type value).
Proof.
  intros Ht Hv Hb. apply block_not_direct in Hb. rewrite (proj1 (direct_string_fields type value Ht Hv)) in Hb. discriminate.
Qed.

Lemma direct_string_inj type value type' value' : 0 <= type < 4 -> 0 <= value < 2 ^ 59 -> 0 <= type' < 4 -> 0 <= value' < 2 ^ 59 ->
  ECMA_CREATE_DIRECT_STRING type value = ECMA_CREATE_DIRECT_STRING type' value' -> type = type' /\ value = value'.
Proof. intros. rewrite !direct_string_word in * by assumption. lia. Qed.

Lemma integer_word i : ECMA_IS_INTEGER_NUMBER i = true -> ecma_make_integer_value i = u32 (16 * i).
Proof.
  unfold ECMA_IS_INTEGER_NUMBER, ECMA_INTEGER_NUMBER_MIN, ECMA_INTEGER_NUMBER_MAX. intros H. zbool.
  unfold ecma_make_integer_value, ECMA_DIRECT_TYPE_INTEGER_VALUE, ECMA_DIRECT_SHIFT, ECMA_TYPE_DIRECT. rewrite Z.shiftl_0_l, Z.lor_0_l, Z.lor_0_r.
  rewrite Z.shiftl_mul_pow2 by lia. change (2 ^ 4) with 16. zmod.
Qed.

(** ** The values of the engine *)

Inductive value :=
| INTEGER (i : Z)
| SIMPLE (n : Z)
| DIRECT_STRING (type immediate : Z)
| HEAP_STRING (p : Z)
| FLOAT (p : Z)
| HEAP_SYMBOL (p : Z)
| BIGINT_ZERO
| BIGINT (p : Z)
| OBJECT (p : Z)
| EXCEPTION (p : Z).

Definition value_ok (v : value) : Prop :=
  match v with
  | INTEGER i => ECMA_IS_INTEGER_NUMBER i = true
  | SIMPLE n => 0 <= n < 16
  | DIRECT_STRING type immediate => 0 <= type < 4 /\ 0 <= immediate <= ECMA_DIRECT_STRING_MAX_IMM
  | HEAP_STRING p | FLOAT p | HEAP_SYMBOL p | BIGINT p | OBJECT p | EXCEPTION p => is_block p
  | BIGINT_ZERO => True
  end.

Definition encode (v : value) : Z :=
  match v with
  | INTEGER i => ecma_make_integer_value i
  | SIMPLE n => ECMA_MAKE_VALUE n
  | DIRECT_STRING type immediate => ecma_make_string_value (ECMA_CREATE_DIRECT_STRING type immediate)
  | HEAP_STRING p => ecma_make_string_value p
  | FLOAT p => ecma_make_float_value p
  | HEAP_SYMBOL p => ecma_make_symbol_value p
  | BIGINT_ZERO => ECMA_BIGINT_ZERO
  | BIGINT p => ecma_make_extended_primitive_value p ECMA_TYPE_BIGINT
  | OBJECT p => ecma_make_object_value p
  | EXCEPTION p => ecma_make_extended_primitive_value p ECMA_TYPE_ERROR
  end.

(** The type field *)
Definition type_of (v : value) : Z :=
  match v with
  | INTEGER _ | SIMPLE _ => ECMA_TYPE_DIRECT
  | DIRECT_STRING _ _ => ECMA_TYPE_DIRECT_STRING
  | HEAP_STRING _ => ECMA_TYPE_STRING
  | FLOAT _ => ECMA_TYPE_FLOAT
  | HEAP_SYMBOL _ => ECMA_TYPE_SYMBOL
  | BIGINT_ZERO | BIGINT _ => ECMA_TYPE_BIGINT
  | OBJECT _ => ECMA_TYPE_OBJECT
  | EXCEPTION _ => ECMA_TYPE_ERROR
  end.

(** The word, as eight times a payload and the type; direct values have one more type bit *)
Definition payload (v : value) : Z :=
  match v with
  | INTEGER i => u32 (16 * i) / 8
  | SIMPLE n => 2 * n + 1
  | DIRECT_STRING type immediate => type + 4 * immediate
  | HEAP_STRING p | FLOAT p | HEAP_SYMBOL p | BIGINT p | OBJECT p | EXCEPTION p => p / 8 + 1
  | BIGINT_ZERO => 0
  end.

Lemma block_word p : is_block p -> p + 8 = 8 * (p / 8 + 1) /\ 0 <= p / 8 + 1 < 536870912.
Proof. intros [Hr [q ->]]. rewrite Z.div_mul by lia. lia. Qed.

Lemma encode_word v : value_ok v -> encode v = 8 * payload v + type_of v /\ 0 <= payload v < 536870912.
Proof.
  destruct v as [i | n | t k | p | p | p | | p | p | p]; intros Hv; cbn [value_ok encode payload type_of] in *;
    unfold ecma_make_float_value, ecma_make_symbol_value, ecma_make_object_value, ecma_make_extended_primitive_value,
      ECMA_TYPE_FLOAT, ECMA_TYPE_SYMBOL, ECMA_TYPE_OBJECT, ECMA_TYPE_BIGINT, ECMA_TYPE_ERROR;
    try (rewrite tagged_value by (assumption || lia); pose proof (block_word p Hv); lia).
  - rewrite integer_word by exact Hv. unfold ECMA_TYPE_DIRECT. zmod.
  - unfold ECMA_MAKE_VALUE, ECMA_DIRECT_SHIFT, ECMA_DIRECT_TYPE_SIMPLE_VALUE, ECMA_TYPE_DIRECT, ECMA_VALUE_SHIFT. rewrite Z.shiftl_mul_pow2 by lia.
    change (Z.lor (Z.shiftl 1 3) 0) with 8. change (2 ^ 4) with 16. rewrite u32_small by (unfold is_u32; lia).
    replace (n * 16) with (n * 2 ^ 4) by reflexivity. rewrite lor_mul_low by (cbn; lia). change (2 ^ 4) with 16. lia.
  - destruct Hv as [Ht Hk]. unfold ECMA_DIRECT_STRING_MAX_IMM in Hk. unfold ecma_make_string_value.
    destruct (direct_string_fields t k Ht) as (_ & _ & _ & H7 & _); [change (2 ^ 59) with 576460752303423488; lia |]. rewrite H7. cbn [negb Z.eqb ECMA_TYPE_DIRECT_STRING].
    rewrite direct_string_word by (try change (2 ^ 59) with 576460752303423488; lia). unfold ECMA_TYPE_DIRECT_STRING. cbn.
    rewrite u32_small by (unfold is_u32; lia). lia.
  - unfold ecma_make_string_value. destruct (block_word p Hv) as [E Hr]. destruct Hv as [Hb [q Hq]].
    assert (Z.land p ECMA_VALUE_TYPE_MASK = 0) as -> by (replace p with (8 * q + 0) by lia; apply land_7; lia). cbn [negb Z.eqb].
    unfold ECMA_TYPE_STRING. rewrite tagged_value by (lia || (split; [exact Hb | now exists q])). lia.
  - unfold ECMA_BIGINT_ZERO, ECMA_TYPE_BIGINT. lia.
Qed.

Lemma type_of_range v : 0 <= type_of v < 8.
Proof. destruct v; now split. Qed.

Lemma encode_type v : value_ok v -> ecma_get_value_type_field (encode v) = type_of v.
Proof.
  intros Hv. destruct (encode_word v Hv) as [-> _]. unfold ecma_get_value_type_field, ECMA_VALUE_TYPE_MASK. apply land_7, type_of_range.
Qed.

(** The second type bit of direct values *)
Lemma encode_direct v : value_ok v -> Z.land (encode v) ECMA_DIRECT_TYPE_MASK = type_of v + 8 * (payload v mod 2).
Proof.
  intros Hv. destruct (encode_word v Hv) as [-> _]. change ECMA_DIRECT_TYPE_MASK with 15. pose proof (type_of_range v).
  replace (8 * payload v + type_of v) with (16 * (payload v / 2) + (type_of v + 8 * (payload v mod 2))) by zmod. apply land_15. zmod.
Qed.

Lemma value_encode_inj v v' : value_ok v -> value_ok v' -> encode v = encode v' -> v = v'.
Proof.
  intros Hv Hv' E. destruct (encode_word v Hv) as [Ev _], (encode_word v' Hv') as [Ev' _]. pose proof (type_of_range v). pose proof (type_of_range v').
  assert (Ht : type_of v = type_of v') by lia. assert (Hp : payload v = payload v') by lia. clear E Ev Ev'.
  destruct v, v'; try discriminate Ht; cbn [payload value_ok] in *; unfold ECMA_IS_INTEGER_NUMBER, ECMA_INTEGER_NUMBER_MIN, ECMA_INTEGER_NUMBER_MAX in *; zbool;
    repeat match goal with H : is_block ?q |- _ => destruct H as [? [? ?]]; subst q end; rewrite ?Z.div_mul in Hp by lia; try reflexivity;
    try (f_equal; zmod); zmod.
Qed.

Lemma lor_16_true w : Z.lor w 16 = 56 <-> w = 40 \/ w = 56.
Proof.
  split; [| now intros [-> | ->]]. intros E. pose proof (Z.lor_ldiff_and w 16) as Hw.
  assert (Z.ldiff w 16 = Z.ldiff (Z.lor w 16) 16) as Hd.
  { apply Z.bits_inj'. intros n Hn. rewrite !Z.ldiff_spec, Z.lor_spec. now destruct (Z.testbit w n), (Z.testbit 16 n). }
  rewrite E in Hd. change (Z.ldiff 56 16) with 40 in Hd.
  rewrite Hd in Hw. assert (Z.land w 16 = if Z.testbit w 4 then 16 else 0) as H.
  { apply Z.bits_inj'. intros n Hn. rewrite Z.land_spec. destruct (Z.eq_dec n 4) as [-> | Hne].
    - now destruct (Z.testbit w 4).
    - change 16 with (2 ^ 4). rewrite Z.pow2_bits_false, andb_false_r by lia. destruct (Z.testbit w 4); [now rewrite Z.pow2_bits_false by lia | now rewrite Z.bits_0]. }
  rewrite H in Hw. destruct (Z.testbit w 4); compute in Hw; lia.
Qed.

Definition is_integer (v : value) : bool := match v with INTEGER _ => true | _ => false end.
Definition is_simple (v : value) (P : Z -> bool) : bool := match v with SIMPLE n => P n | _ => false end.

(** The pointer a value holds *)
Definition pointer_of (v : value) : option Z :=
  match v with
  | HEAP_STRING p | FLOAT p | HEAP_SYMBOL p | BIGINT p | OBJECT p | EXCEPTION p => Some p
  | _ => None
  end.

Lemma payload_parity v : value_ok v -> type_of v = ECMA_TYPE_DIRECT -> payload v mod 2 = if is_integer v then 0 else 1.
Proof. destruct v; try discriminate; cbn [payload is_integer value_ok]; intros; zmod. Qed.

Lemma integer_roundtrip i : ECMA_IS_INTEGER_NUMBER i = true -> ecma_get_integer_from_value (ecma_make_integer_value i) = i.
Proof.
  intros H. rewrite integer_word by exact H. unfold ECMA_IS_INTEGER_NUMBER, ECMA_INTEGER_NUMBER_MIN, ECMA_INTEGER_NUMBER_MAX in H. zbool.
  unfold ecma_get_integer_from_value, s32, ECMA_DIRECT_SHIFT. rewrite Z.shiftr_div_pow2 by lia. change (2 ^ 4) with 16.
  rewrite (u32_small (u32 (16 * i))) by apply u32_range. destruct (Z.ltb_spec (u32 (16 * i)) 2147483648); zmod.
Qed.

Lemma encode_pointer v p : value_ok v -> pointer_of v = Some p -> ecma_get_pointer_from_ecma_value (encode v) = p.
Proof.
  intros Hv Hp. destruct (encode_word v Hv) as [-> _]. assert (is_block p) as Hb by (destruct v; cbn in *; congruence).
  assert (payload v = p / 8 + 1) as -> by (destruct v; cbn in *; congruence). destruct (block_word p Hb) as [E _]. rewrite <- E.
  apply value_pointer; [exact Hb | apply type_of_range].
Qed.

Lemma encode_tests v : value_ok v -> let w := encode v in
  ecma_is_value_integer_number w = is_integer v /\ ecma_is_value_simple w = is_simple v (fun _ => true)
  /\ ecma_is_value_string w = (type_of v =? ECMA_TYPE_STRING) || (type_of v =? ECMA_TYPE_DIRECT_STRING).
Proof.
  intros Hv w. subst w. pose proof (encode_direct v Hv) as Hd. pose proof (encode_type v Hv) as Ht. splits.
  - unfold ecma_is_value_integer_number. rewrite Hd. change ECMA_DIRECT_TYPE_INTEGER_VALUE with 0.
    pose proof (payload_parity v Hv). destruct v; cbn [type_of is_integer] in *; try (rewrite H by reflexivity; reflexivity);
      unfold ECMA_TYPE_STRING, ECMA_TYPE_FLOAT, ECMA_TYPE_OBJECT, ECMA_TYPE_SYMBOL, ECMA_TYPE_DIRECT_STRING, ECMA_TYPE_BIGINT, ECMA_TYPE_ERROR in *;
      match goal with |- (?x =? 0) = false => destruct (Z.eqb_spec x 0); [zmod | reflexivity] end.
  - unfold ecma_is_value_simple. rewrite Hd. change ECMA_DIRECT_TYPE_SIMPLE_VALUE with 8.
    pose proof (payload_parity v Hv). destruct v; cbn [type_of is_integer is_simple] in *; try (rewrite H by reflexivity; reflexivity);
      unfold ECMA_TYPE_STRING, ECMA_TYPE_FLOAT, ECMA_TYPE_OBJECT, ECMA_TYPE_SYMBOL, ECMA_TYPE_DIRECT_STRING, ECMA_TYPE_BIGINT, ECMA_TYPE_ERROR in *;
      match goal with |- (?x =? 8) = false => destruct (Z.eqb_spec x 8); [zmod | reflexivity] end.
  - unfold ecma_is_value_string. change (ECMA_VALUE_TYPE_MASK - 4) with 3. unfold ecma_get_value_type_field, ECMA_VALUE_TYPE_MASK in Ht.
    change 3 with (Z.land 7 3). rewrite Z.land_assoc, Ht. now destruct v.
Qed.

(** C31: the encoding of values: every value is a 32-bit word which the test of
    its own kind accepts and every other test rejects; the pointer, the small
    integer and the direct string in it are found again; and no two values have
    the same word. *)
Theorem ecma_value_encoding v : value_ok v -> let w := encode v in
  is_u32 w /\ (forall v', value_ok v' -> encode v' = w -> v' = v)
  /\ ecma_is_value_integer_number w = is_integer v
  /\ ecma_is_value_simple w = is_simple v (fun _ => true)
  /\ ecma_is_value_boolean w = is_simple v (fun n => (n =? 2) || (n =? 3))
  /\ ecma_is_value_number w = is_integer v || (type_of v =? ECMA_TYPE_FLOAT)
  /\ ecma_is_value_string w = (type_of v =? ECMA_TYPE_STRING) || (type_of v =? ECMA_TYPE_DIRECT_STRING)
  /\ ecma_is_value_symbol w = (type_of v =? ECMA_TYPE_SYMBOL) /\ ecma_is_value_bigint w = (type_of v =? ECMA_TYPE_BIGINT)
  /\ ecma_is_value_object w = (type_of v =? ECMA_TYPE_OBJECT) /\ ecma_is_value_exception w = (type_of v =? ECMA_TYPE_ERROR)
  /\ (forall v', value_ok v' -> ecma_are_values_integer_numbers w (encode v') = is_integer v && is_integer v')
  /\ match v with
     | INTEGER i => ecma_get_integer_from_value w = i
     | DIRECT_STRING type immediate => ecma_get_string_from_value w = ECMA_CREATE_DIRECT_STRING type immediate
     | HEAP_STRING p => ecma_get_string_from_value w = p
     | FLOAT p => ecma_get_pointer_from_float_value w = p
     | HEAP_SYMBOL p => ecma_get_symbol_from_value w = p
     | BIGINT p | EXCEPTION p => ecma_get_extended_primitive_from_value w = p
     | OBJECT p => ecma_get_object_from_value w = p
     | SIMPLE _ | BIGINT_ZERO => True
     end.
Proof.
  intros Hv w. destruct (encode_tests v Hv) as (Hint & Hsimple & Hstring). pose proof (encode_type v Hv) as Ht. destruct (encode_word v Hv) as [Ew Hr]. pose proof (type_of_range v).
  subst w. splits.
  - unfold is_u32. lia.
  - intros v' Hv' E. symmetry. apply value_encode_inj; congruence.
  - exact Hint.
  - exact Hsimple.
  - unfold ecma_is_value_boolean, ecma_is_value_true, ecma_is_value_equal_to_simple_value. change ECMA_VALUE_TRUE with 56. change (Z.shiftl 1 ECMA_DIRECT_SHIFT) with 16.
    assert (forall n, 0 <= n < 16 -> encode (SIMPLE n) = 16 * n + 8) as Hs by (intros n Hn; rewrite (proj1 (encode_word (SIMPLE n) Hn)); cbn [payload type_of]; unfold ECMA_TYPE_DIRECT; lia).
    destruct (Z.eqb_spec (Z.lor (encode v) 16) 56) as [E | E].
    + apply lor_16_true in E. assert (v = SIMPLE 2 \/ v = SIMPLE 3) as [-> | ->]; [| reflexivity ..].
      destruct E as [E | E]; [left | right]; (apply value_encode_inj; [exact Hv | cbn; lia |]); rewrite Hs by lia; lia.
    + destruct v as [| n | | | | | | | |]; try reflexivity. cbn [is_simple]. cbn [value_ok] in Hv. rewrite Hs in E by exact Hv.
      destruct (Z.eqb_spec n 2), (Z.eqb_spec n 3); try reflexivity; exfalso; apply E; apply lor_16_true; lia.
  - unfold ecma_is_value_number. rewrite Hint. unfold ecma_is_value_float_number. now rewrite Ht.
  - exact Hstring.
  - unfold ecma_is_value_symbol. now rewrite Ht.
  - unfold ecma_is_value_bigint. now rewrite Ht.
  - unfold ecma_is_value_object. now rewrite Ht.
  - unfold ecma_is_value_exception. now rewrite Ht.
  - intros v' Hv'. destruct (encode_tests v' Hv') as (Hint' & _ & _). unfold ecma_is_value_integer_number, ecma_are_values_integer_numbers in *.
    change ECMA_DIRECT_TYPE_INTEGER_VALUE with 0 in *. rewrite Z.land_lor_distr_l, <- Hint, <- Hint'.
    destruct (Z.eqb_spec (Z.land (encode v) ECMA_DIRECT_TYPE_MASK) 0) as [-> |]; [now rewrite Z.lor_0_l |]. cbn [andb].
    apply Z.eqb_neq. rewrite Z.lor_eq_0_iff. tauto.
  - destruct v as [i | n | t k | p | p | p | | p | p | p]; try exact I; try (apply (encode_pointer _ _ Hv); reflexivity).
    + now apply integer_roundtrip.
    + unfold ecma_get_string_from_value. unfold ecma_get_value_type_field in Ht. rewrite Ht. cbn [type_of Z.eqb ECMA_TYPE_DIRECT_STRING].
      destruct Hv as [Hb Hk]. unfold ECMA_DIRECT_STRING_MAX_IMM in Hk. rewrite direct_string_word by (try change (2 ^ 59) with 576460752303423488; lia).
      change (5 =? 5)%positive with true. cbv iota. rewrite Ew. cbn [payload type_of]. unfold ECMA_TYPE_DIRECT_STRING. lia.
    + unfold ecma_get_string_from_value. unfold ecma_get_value_type_field in Ht. rewrite Ht. cbn [type_of Z.eqb ECMA_TYPE_STRING ECMA_TYPE_DIRECT_STRING].
      apply (encode_pointer _ _ Hv). reflexivity.
Qed.

Lemma ecma_value_encoding_witness : ecma_get_integer_from_value (encode (INTEGER (-5))) = -5 /\ ecma_get_string_from_value (encode (HEAP_STRING 4096)) = 4096.
Proof.
  split.
  - apply (ecma_value_encoding (INTEGER (-5))). reflexivity.
  - apply (ecma_value_encoding (HEAP_STRING 4096)). split; [lia | now exists 512].
Defined.
