(* ===== verification/BlockHeap.v ===== *)
(** * The heap, as the owners of linked structures see it

    HeapIface counts the bytes a computation holds; data structures whose parts
    point to each other need the blocks themselves.  The class [BlockHeap] is
    what src/jjs-core/jmem promises to them: a block that is handed out is
    aligned and apart from the blocks that are held, and a block is given back
    with the size it was asked for with.  Client code runs in the monad [W],
    over the blocks it holds and their contents; every write is checked against
    the size of its block, and every release against the size that was
    allocated. *)
From Stdlib Require Import ZArith Lia.
From stdpp Require Import base gmap list.
From S2P Require Import Prelude.
#[local] Open Scope Z_scope.

(** [holds h live]: the blocks in [live], address to size, are in use in the
    heap [h].  Other blocks may be in use besides: those of other owners, which
    the garbage collector may release in the middle of an allocation. *)
Class BlockHeap := {
  block_heap : Type;
  holds : block_heap -> gmap Z Z -> Prop;
  (** jmem_heap_alloc_block: without memory the process ends *)
  heap_alloc_block : Z -> block_heap -> option (Z * block_heap);
  heap_realloc_block : Z -> Z -> Z -> block_heap -> option (Z * block_heap);
  heap_free_block : Z -> Z -> block_heap -> option block_heap;
  alloc_block_holds : forall h live n p h', holds h live -> 0 < n -> heap_alloc_block n h = Some (p, h') ->
    holds h' (<[p := n]> live) /\ live !! p = None /\ (8 | p) /\ 0 <= p /\ p + n <= B32 - 8;
  realloc_block_holds : forall h live p m n q h', holds h live -> live !! p = Some m -> 0 < n -> heap_realloc_block p m n h = Some (q, h') ->
    holds h' (<[q := n]> (delete p live)) /\ delete p live !! q = None /\ (8 | q) /\ 0 <= q /\ q + n <= B32 - 8;
  free_block_holds : forall h live p n, holds h live -> live !! p = Some n -> exists h', heap_free_block p n h = Some h' /\ holds h' (delete p live)
}.

(** What the blocks of a client contain: the contents that fit into a block of
    a given size, and what is left of them in the first bytes of the block *)
Class BlockContent (B : Type) := {
  fits : B -> Z -> bool;
  shrink : Z -> B -> B
}.

Section Client.
Context {BH : BlockHeap} {B : Type} {BC : BlockContent B}.

(** The blocks with their sizes, and their contents once they were written;
    [notes] are the calls of the embedder's callbacks *)
Record world := mk_world { heap_of : block_heap; blocks : gmap Z (Z * option B); notes : list (list Z * Z) }.

Inductive result (A : Type) :=
| OK (a : A) (w : world)
| STOP (refused : bool) (** the process ends: the heap refused a request, or another fatal error *)
| FAULT. (** the code reads, writes or releases what is not there *)
Arguments OK {A} _ _.
Arguments STOP {A} _.
Arguments FAULT {A}.

Definition W (A : Type) : Type := world -> result A.

#[export] Instance W_ret : MRet W := fun A a w => OK a w.
#[export] Instance W_bind : MBind W := fun A B f m w =>
  match m w with OK a w => f a w | STOP r => STOP r | FAULT => FAULT end.

Definition fault {A} : W A := fun _ => FAULT.
(** jjs_fatal *)
Definition fatal {A} : W A := fun _ => STOP false.
Definition get_blocks : W (gmap Z (Z * option B)) := fun w => OK (blocks w) w.
(** A computation that only reads *)
Definition reading {A} (f : gmap Z (Z * option B) -> option A) : W A := fun w =>
  match f (blocks w) with Some a => OK a w | None => FAULT end.
Definition note (e : list Z * Z) : W unit := fun w => OK tt (mk_world (heap_of w) (blocks w) (notes w ++ [e])).

Definition block_at (bl : gmap Z (Z * option B)) (p : Z) : option B := match bl !! p with Some (_, b) => b | None => None end.

Definition jmem_heap_alloc_block (size : Z) : W Z := fun w =>
  match heap_alloc_block size (heap_of w) with
  | Some (p, h) => OK p (mk_world h (<[p := (size, None)]> (blocks w)) (notes w))
  | None => STOP true
  end.
Definition jmem_heap_free_block (p size : Z) : W unit := fun w =>
  match blocks w !! p with
  | Some (n, _) =>
      if n =? size then
        match heap_free_block p size (heap_of w) with
        | Some h => OK tt (mk_world h (delete p (blocks w)) (notes w))
        | None => FAULT
        end
      else FAULT
  | None => FAULT
  end.
Definition jmem_heap_realloc_block (p old_size new_size : Z) : W Z := fun w =>
  match blocks w !! p with
  | Some (n, b) =>
      if n =? old_size then
        match heap_realloc_block p old_size new_size (heap_of w) with
        | Some (q, h) => OK q (mk_world h (<[q := (new_size, shrink (Z.min old_size new_size) <$> b)]> (delete p (blocks w))) (notes w))
        | None => STOP true
        end
      else FAULT
  | None => FAULT
  end.
(** Stores to the fields of a block *)
Definition write_block (p : Z) (b : B) : W unit := fun w =>
  match blocks w !! p with
  | Some (n, _) => if fits b n then OK tt (mk_world (heap_of w) (<[p := (n, Some b)]> (blocks w)) (notes w)) else FAULT
  | None => FAULT
  end.

(** ** Reasoning *)

(** The heap holds the blocks of the client *)
Definition owns (w : world) : Prop := holds (heap_of w) (fst <$> blocks w).

(** From [w], [m] ends with a result and a state in [Q]; the process ends only
    when the heap refuses *)
Definition runs {A} (m : W A) (w : world) (Q : A -> world -> Prop) : Prop :=
  match m w with OK a w' => Q a w' | STOP refused => refused = true | FAULT => False end.

Lemma runs_ret {A} (a : A) w Q : Q a w -> runs (mret a) w Q.
Proof. exact (fun H => H). Qed.

Lemma runs_bind {A C} (m : W A) (f : A -> W C) w Q : runs m w (fun a w' => runs (f a) w' Q) -> runs (m ≫= f) w Q.
Proof. unfold runs, mbind, W_bind. destruct (m w); auto. Qed.

Lemma runs_mono {A} (m : W A) w (Q Q' : A -> world -> Prop) : runs m w Q -> (forall a w', Q a w' -> Q' a w') -> runs m w Q'.
Proof. unfold runs. destruct (m w); auto. Qed.

Lemma runs_reading {A} (f : gmap Z (Z * option B) -> option A) w a (Q : A -> world -> Prop) : f (blocks w) = Some a -> Q a w -> runs (reading f) w Q.
Proof. unfold runs, reading. intros -> H. exact H. Qed.

Lemma held_block w p n b : blocks w !! p = Some (n, b) -> (fst <$> blocks w) !! p = Some n.
Proof. intros Hp. rewrite lookup_fmap, Hp. reflexivity. Qed.

Lemma not_held (bl : gmap Z (Z * option B)) p : (fst <$> bl) !! p = None -> bl !! p = None.
Proof. rewrite lookup_fmap. now destruct (bl !! p). Qed.

Lemma runs_alloc n w (Q : Z -> world -> Prop) : owns w -> 0 < n ->
  (forall p h, let w' := mk_world h (<[p := (n, None)]> (blocks w)) (notes w) in
    owns w' -> blocks w !! p = None -> (8 | p) -> 0 <= p -> p + n <= B32 - 8 -> Q p w') ->
  runs (jmem_heap_alloc_block n) w Q.
Proof.
  intros Hh Hn HQ. unfold runs, jmem_heap_alloc_block. destruct (heap_alloc_block n (heap_of w)) as [[p h] |] eqn:E; [| reflexivity].
  destruct (alloc_block_holds _ _ _ _ _ Hh Hn E) as (Hh' & Hnew & Hal & H8 & Hend).
  apply HQ; try assumption; [| now apply not_held]. unfold owns. cbn [heap_of blocks]. now rewrite fmap_insert.
Qed.

Lemma runs_free p n b w (Q : unit -> world -> Prop) : owns w -> blocks w !! p = Some (n, b) ->
  (forall h, let w' := mk_world h (delete p (blocks w)) (notes w) in owns w' -> Q tt w') ->
  runs (jmem_heap_free_block p n) w Q.
Proof.
  intros Hown Hp HQ. unfold runs, jmem_heap_free_block. rewrite Hp, Z.eqb_refl.
  destruct (free_block_holds _ _ p n Hown (held_block _ _ _ _ Hp)) as (h & Hf & Hh). rewrite Hf. apply HQ.
  unfold owns. cbn [heap_of blocks]. now rewrite fmap_delete.
Qed.

Lemma runs_realloc p m n b w (Q : Z -> world -> Prop) : owns w -> blocks w !! p = Some (m, b) -> 0 < n ->
  (forall q h, let w' := mk_world h (<[q := (n, shrink (Z.min m n) <$> b)]> (delete p (blocks w))) (notes w) in
    owns w' -> delete p (blocks w) !! q = None -> (8 | q) -> 0 <= q -> q + n <= B32 - 8 -> Q q w') ->
  runs (jmem_heap_realloc_block p m n) w Q.
Proof.
  intros Hown Hp Hn HQ. unfold runs, jmem_heap_realloc_block. rewrite Hp, Z.eqb_refl.
  destruct (heap_realloc_block p m n (heap_of w)) as [[q h] |] eqn:E; [| reflexivity].
  destruct (realloc_block_holds _ _ _ _ _ _ _ Hown (held_block _ _ _ _ Hp) Hn E) as (Hh' & Hnew & Hal & H8 & Hend).
  rewrite <- fmap_delete in Hh', Hnew. apply HQ; try assumption; [| now apply not_held]. unfold owns. cbn [heap_of blocks]. now rewrite fmap_insert.
Qed.

Lemma owns_write w p n b b' : owns w -> blocks w !! p = Some (n, b) -> owns (mk_world (heap_of w) (<[p := (n, b')]> (blocks w)) (notes w)).
Proof.
  unfold owns. cbn [heap_of blocks]. intros Hown Hp. rewrite fmap_insert, insert_id; [exact Hown |]. exact (held_block _ _ _ _ Hp).
Qed.

Lemma runs_write p n b b' w (Q : unit -> world -> Prop) : owns w -> blocks w !! p = Some (n, b) -> fits b' n = true ->
  (let w' := mk_world (heap_of w) (<[p := (n, Some b')]> (blocks w)) (notes w) in owns w' -> Q tt w') ->
  runs (write_block p b') w Q.
Proof.
  intros Hown Hp Hfit HQ. unfold runs, write_block. rewrite Hp, Hfit. apply HQ. eapply owns_write; eassumption.
Qed.

Lemma owns_note w e : owns w -> owns (mk_world (heap_of w) (blocks w) (notes w ++ [e])).
Proof. exact (fun H => H). Qed.
End Client.
Arguments world {BH} B.
Arguments OK {BH B A} _ _.
Arguments STOP {BH B A} _.
Arguments FAULT {BH B A}.
Arguments W {BH} B A.

(** ** A concrete heap for evaluation

    New blocks lie behind all blocks in use, and a request is refused when it
    does not fit below the end of the area. *)

Definition live_end (live : gmap Z Z) : Z := map_fold (fun p n e => Z.max e (p + n)) 0 live.
Definition place (live : gmap Z Z) : Z := (live_end live + 7) / 8 * 8.

Lemma live_end_spec live : 0 <= live_end live /\ forall p n, live !! p = Some n -> p + n <= live_end live.
Proof.
  unfold live_end. apply (map_fold_weak_ind (fun e (m : gmap Z Z) => 0 <= e /\ forall p n, m !! p = Some n -> p + n <= e)).
  - split; [lia |]. intros p n. rewrite lookup_empty. discriminate.
  - intros q m l e Hq [H1 H2]. split; [lia |]. intros p n Hp. apply lookup_insert_Some in Hp as [[<- <-] | [Hne Hp]]; [lia |]. specialize (H2 _ _ Hp). lia.
Qed.

Lemma place_spec live : (forall p n, live !! p = Some n -> 0 < n) -> (8 | place live) /\ 0 <= place live /\ live !! place live = None.
Proof.
  intros Hpos. destruct (live_end_spec live) as [H1 H2]. unfold place. assert (H3 : live_end live <= (live_end live + 7) / 8 * 8) by zmod. splits.
  - exists ((live_end live + 7) / 8). lia.
  - lia.
  - destruct (live !! ((live_end live + 7) / 8 * 8)) as [n |] eqn:E; [| reflexivity]. pose proof (Hpos _ _ E). specialize (H2 _ _ E). lia.
Qed.

Record top_heap := mk_top { top_live : gmap Z Z; top_limit : Z }.

Definition top_alloc (n : Z) (h : top_heap) : option (Z * top_heap) :=
  let p := place (top_live h) in
  if p + n <=? Z.min (top_limit h) (B32 - 8) then Some (p, mk_top (<[p := n]> (top_live h)) (top_limit h)) else None.

#[export] Instance TopHeap : BlockHeap.
Proof.
  refine {|
    block_heap := top_heap;
    holds h live := top_live h = live /\ forall p n, live !! p = Some n -> 0 < n;
    heap_alloc_block := top_alloc;
    heap_realloc_block p m n h := top_alloc n (mk_top (delete p (top_live h)) (top_limit h));
    heap_free_block p n h := match top_live h !! p with Some m => if m =? n then Some (mk_top (delete p (top_live h)) (top_limit h)) else None | None => None end
  |}.
  - intros h live n p h' [<- Hpos] Hn. unfold top_alloc. destruct (Z.leb_spec (place (top_live h) + n) (Z.min (top_limit h) (B32 - 8))); [| discriminate].
    intros [= <- <-]. destruct (place_spec (top_live h) Hpos) as (H1 & H2 & H3). splits; try assumption; try lia; [reflexivity |].
    intros q k Hq. apply lookup_insert_Some in Hq as [[<- <-] | [Hne Hq]]; [exact Hn | eapply Hpos; exact Hq].
  - intros h live p m n q h' [<- Hpos] Hp Hn. unfold top_alloc. cbn [top_live top_limit].
    assert (Hpos' : forall q k, delete p (top_live h) !! q = Some k -> 0 < k) by (intros q0 k Hq; apply lookup_delete_Some in Hq as [_ Hq]; eapply Hpos; exact Hq).
    destruct (Z.leb_spec (place (delete p (top_live h)) + n) (Z.min (top_limit h) (B32 - 8))); [| discriminate].
    intros [= <- <-]. destruct (place_spec (delete p (top_live h)) Hpos') as (H1 & H2 & H3). splits; try assumption; try lia; [reflexivity |].
    intros q k Hq. apply lookup_insert_Some in Hq as [[<- <-] | [Hne Hq]]; [exact Hn | eapply Hpos'; exact Hq].
  - intros h live p n [<- Hpos] Hp. rewrite Hp, Z.eqb_refl. eexists. split; [reflexivity |]. split; [reflexivity |].
    intros q k Hq. apply lookup_delete_Some in Hq as [_ Hq]. eapply Hpos; exact Hq.
Defined.
