(* ===== verification/MagicStrings.v ===== *)
(** * Magic strings: src/jjs-core/lit/lit-magic-strings.c

    Strings that the engine or the embedder knows in advance have numbers
    instead of contents.  The engine's own are in a generated table, sorted by
    size and then by bytes, with the position of the first string of each size;
    the embedder's are registered in an array with the same order.  The
    searches are binary; the [pair] variants look up the concatenation of two
    strings without building it.

    Tables are lists of byte lists.  An access beyond a table or a string is
    [None]; the theorems exclude it. *)
From Stdlib Require Import ZArith List Lia Bool Sorted.
From S2P Require Import Prelude LitStrings.
Import ListNotations.
#[local] Open Scope Z_scope.

Definition at_index {A} (l : list A) (i : Z) : option A := if i <? 0 then None else nth_error l (Z.to_nat i).

(** The tables: the generated ones, and the one of the context *)
Record magic_tables := mk_magic {
  lit_magic_strings : list (list Z);
  lit_magic_string_size_block_starts : list Z;
  (** the numbers between the length of the first table and this one belong to internal strings without contents *)
  LIT_MAGIC_STRING__COUNT : Z;
  lit_magic_string_ex_array : list (list Z)
}.

(** The number of the empty string *)
Definition LIT_MAGIC_STRING__EMPTY : Z := 0.
Definition LIT_EXTERNAL_MAGIC_STRING_LIMIT : Z := 2147483647.

(** Three-way comparison of the first [n] bytes *)
Fixpoint memcmp (a b : list Z) (n : nat) : option Z :=
  match n with
  | O => Some 0
  | S n => match a, b with
           | x :: a, y :: b => if x =? y then memcmp a b n else Some (x - y)
           | _, _ => None
           end
  end.

(** The loop of all four searches; [compare] is the comparison of the string
    numbered [middle] with the one that is searched for *)
Fixpoint search_loop (compare : Z -> option Z) (fuel : nat) (first last missing : Z) : option Z :=
  match fuel with
  | O => None
  | S fuel =>
      if first <? last then
        let middle := u32 (first + last) / 2 in
        match compare middle with
        | None => None
        | Some c =>
            if c =? 0 then Some middle
            else if 0 <? c then search_loop compare fuel first middle missing
            else search_loop compare fuel (middle + 1) last missing
        end
      else Some missing
  end.

Section Tables.
Context (T : magic_tables).

Definition LIT_NON_INTERNAL_MAGIC_STRING__COUNT : Z := zlength (lit_magic_strings T).
Definition lit_get_magic_string_ex_count : Z := zlength (lit_magic_string_ex_array T).

Definition lit_get_magic_string_utf8 (id : Z) : option (list Z) := at_index (lit_magic_strings T) id.
Definition lit_get_magic_string_size (id : Z) : option Z := option_map zlength (lit_get_magic_string_utf8 id).
Definition lit_get_magic_string_size_block_start (size : Z) : option Z := at_index (lit_magic_string_size_block_starts T) size.
Definition lit_get_magic_string_ex_utf8 (id : Z) : option (list Z) := at_index (lit_magic_string_ex_array T) id.
Definition lit_get_magic_string_ex_size (id : Z) : option Z := option_map zlength (lit_get_magic_string_ex_utf8 id).

(** The table of the context is set once *)
Definition lit_magic_strings_ex_set (ex_str_items : list (list Z)) : magic_tables :=
  mk_magic (lit_magic_strings T) (lit_magic_string_size_block_starts T) (LIT_MAGIC_STRING__COUNT T)
    (if LIT_EXTERNAL_MAGIC_STRING_LIMIT <? zlength ex_str_items then firstn (Z.to_nat LIT_EXTERNAL_MAGIC_STRING_LIMIT) ex_str_items else ex_str_items).

(** memcmp of a string of the table with two strings in a row *)
Definition memcmp_pair (middle string1 string2 : list Z) : option Z :=
  match memcmp middle string1 (length string1) with
  | Some 0 => memcmp (skipn (length string1) middle) string2 (length string2)
  | c => c
  end.

(** The search in the block of the strings of the size [total] *)
Definition search_block (total : Z) (compare : list Z -> option Z) : option Z :=
  match lit_get_magic_string_size (LIT_NON_INTERNAL_MAGIC_STRING__COUNT - 1) with
  | None => None
  | Some largest =>
      if largest <? total then Some (LIT_MAGIC_STRING__COUNT T)
      else
        match lit_get_magic_string_size_block_start total, lit_get_magic_string_size_block_start (total + 1) with
        | Some first, Some last =>
            search_loop (fun middle => match lit_get_magic_string_utf8 middle with Some m => compare m | None => None end)
              (S (Z.to_nat (last - first))) first last (LIT_MAGIC_STRING__COUNT T)
        | _, _ => None
        end
  end.

Definition lit_is_utf8_string_magic (string : list Z) : option Z :=
  search_block (zlength string) (fun middle_string => memcmp middle_string string (length string)).

Definition lit_is_utf8_string_pair_magic (string1 string2 : list Z) : option Z :=
  search_block (u32 (zlength string1 + zlength string2)) (fun middle_string => memcmp_pair middle_string string1 string2).

(** The search in the whole table of the embedder *)
Definition search_ex (total : Z) (compare : list Z -> option Z) : option Z :=
  let magic_string_ex_count := lit_get_magic_string_ex_count in
  if magic_string_ex_count =? 0 then Some magic_string_ex_count
  else
    match lit_get_magic_string_ex_size (magic_string_ex_count - 1) with
    | None => None
    | Some largest =>
        if largest <? total then Some magic_string_ex_count
        else
          search_loop (fun middle =>
            match lit_get_magic_string_ex_utf8 middle with
            | None => None
            | Some ext_string =>
                if total =? zlength ext_string then compare ext_string
                else if zlength ext_string <? total then Some (-1) else Some 1
            end) (S (Z.to_nat magic_string_ex_count)) 0 magic_string_ex_count magic_string_ex_count
    end.

Definition lit_is_ex_utf8_string_magic (string : list Z) : option Z :=
  search_ex (zlength string) (fun ext_string => memcmp ext_string string (length string)).

Definition lit_is_ex_utf8_string_pair_magic (string1 string2 : list Z) : option Z :=
  search_ex (u32 (zlength string1 + zlength string2)) (fun ext_string => memcmp_pair ext_string string1 string2).

(** lit_copy_magic_string_to_buffer, with the buffer of the caller *)
Definition lit_copy_magic_string_to_buffer (id buffer_size : Z) : option (list Z) :=
  match lit_get_magic_string_utf8 id with
  | Some s => if zlength s <=? buffer_size then Some s else None
  | None => None
  end.
End Tables.

(** ** The order of the tables *)

Fixpoint lex (a b : list Z) : Z :=
  match a, b with
  | x :: a, y :: b => if x =? y then lex a b else x - y
  | [], [] => 0
  | [], _ => -1
  | _, [] => 1
  end.

(** By size, then by bytes *)
Definition order (a b : list Z) : Z := if zlength a =? zlength b then lex a b else zlength a - zlength b.
Definition before (a b : list Z) : Prop := order a b < 0.

Definition sorted_table (t : list (list Z)) : Prop := StronglySorted before t.

(** The first string with at least [k] bytes *)
Definition block_start_ok (t : list (list Z)) (k b : Z) : Prop :=
  0 <= b <= zlength t /\ forall i s, at_index t i = Some s -> (b <= i <-> k <= zlength s).

Record tables_ok (T : magic_tables) : Prop := {
  magic_sorted : sorted_table (lit_magic_strings T);
  magic_some : 0 < zlength (lit_magic_strings T);
  magic_blocks : forall k, 0 <= k -> (exists s, In s (lit_magic_strings T) /\ k <= zlength s + 1) ->
    exists b, lit_get_magic_string_size_block_start T k = Some b /\ block_start_ok (lit_magic_strings T) k b;
  magic_count : zlength (lit_magic_strings T) <= LIT_MAGIC_STRING__COUNT T < 32768;
  magic_empty : at_index (lit_magic_strings T) LIT_MAGIC_STRING__EMPTY = Some [];
  magic_ascii : Forall (Forall (fun b => 0 <= b < 128)) (lit_magic_strings T);
  magic_no_digit : Forall (fun s => match s with c :: _ => ~ 48 <= c <= 57 | [] => True end) (lit_magic_strings T);
  ex_sorted : sorted_table (lit_magic_string_ex_array T);
  ex_count : zlength (lit_magic_string_ex_array T) <= LIT_EXTERNAL_MAGIC_STRING_LIMIT;
  ex_valid : Forall (fun s => zlength s < B32 /\ exists units, Forall is_u16 units /\ s = cesu8_encode units) (lit_magic_string_ex_array T)
}.

(** The parts of it that are decided by computation *)
Fixpoint adjacent (t : list (list Z)) : bool :=
  match t with
  | a :: (b :: _) as t' => (order a b <? 0) && adjacent t'
  | _ => true
  end.
Definition check_block (t : list (list Z)) (k b : Z) : bool :=
  (0 <=? b) && (b <=? zlength t) && forallb (fun s => zlength s <? k) (firstn (Z.to_nat b) t) && forallb (fun s => k <=? zlength s) (skipn (Z.to_nat b) t).
Definition check_blocks (t : list (list Z)) (starts : list Z) : bool :=
  forallb (fun i => match at_index starts (Z.of_nat i) with Some b => check_block t (Z.of_nat i) b | None => false end) (seq 0 (length starts))
  && forallb (fun s => zlength s + 1 <? zlength starts) t.
Definition check_ascii (t : list (list Z)) : bool := forallb (forallb (fun b => (0 <=? b) && (b <? 128))) t.
Definition check_digits (t : list (list Z)) : bool :=
  forallb (fun s => match s with c :: _ => negb ((48 <=? c) && (c <=? 57)) | [] => true end) t.

(** The number of a string in a table *)
Fixpoint index_of (s : list Z) (t : list (list Z)) : option Z :=
  match t with
  | [] => None
  | x :: t => if list_eq_dec Z.eq_dec x s then Some 0 else option_map (Z.add 1) (index_of s t)
  end.

(** ** Lemmas *)

Lemma at_index_some {A} (l : list A) i x : at_index l i = Some x <-> 0 <= i /\ nth_error l (Z.to_nat i) = Some x.
Proof. unfold at_index. destruct (Z.ltb_spec i 0); split; try easy. intros []; lia. Qed.

Lemma at_index_bound {A} (l : list A) i x : at_index l i = Some x -> 0 <= i < zlength l.
Proof.
  intros H. apply at_index_some in H as [Hi H]. split; [exact Hi |].
  assert (Z.to_nat i < length l)%nat by (apply nth_error_Some; congruence). unfold zlength. lia.
Qed.

Lemma at_index_lookup {A} (l : list A) i : 0 <= i < zlength l -> exists x, at_index l i = Some x.
Proof.
  intros [Hi Hl]. unfold zlength in Hl. unfold at_index. destruct (Z.ltb_spec i 0); [lia |].
  destruct (nth_error l (Z.to_nat i)) eqn:E; [eauto |]. apply nth_error_None in E. lia.
Qed.

Lemma at_index_in {A} (l : list A) x : In x l <-> exists i, at_index l i = Some x.
Proof.
  split.
  - intros H. destruct (In_nth_error _ _ H) as [n Hn]. exists (Z.of_nat n). apply at_index_some. rewrite Nat2Z.id. split; [lia | exact Hn].
  - intros [i H]. apply at_index_some in H as [_ H]. eapply nth_error_In. exact H.
Qed.

Lemma at_index_cons {A} (a : A) l i x : at_index (a :: l) i = Some x <-> (i = 0 /\ x = a) \/ (0 < i /\ at_index l (i - 1) = Some x).
Proof.
  rewrite !at_index_some. destruct (Z.eq_dec i 0) as [-> | Hi].
  - cbn. split; [intros [_ [= ->]]; now left | intros [[_ ->] | [H _]]; [easy | lia]].
  - split.
    + intros [H1 H2]. right. replace (Z.to_nat i) with (S (Z.to_nat (i - 1))) in H2 by lia. cbn in H2. repeat split; try lia. exact H2.
    + intros [[H _] | (H1 & H2 & H3)]; [lia |]. split; [lia |]. replace (Z.to_nat i) with (S (Z.to_nat (i - 1))) by lia. exact H3.
Qed.

Lemma lex_eq a b : lex a b = 0 <-> a = b.
Proof.
  revert b; induction a as [| x a IH]; intros [| y b]; cbn; try (split; intros; (discriminate || lia || reflexivity)).
  destruct (Z.eqb_spec x y) as [-> | Hn]; [rewrite IH; split; congruence |]. split; [lia | congruence].
Qed.

Lemma memcmp_lex a b : length a = length b -> memcmp a b (length b) = Some (lex a b).
Proof.
  revert b; induction a as [| x a IH]; intros [| y b]; cbn; try (intros; discriminate || reflexivity).
  intros [= H]. destruct (x =? y); auto.
Qed.

Lemma memcmp_pair_lex m a b : zlength m = zlength a + zlength b -> memcmp_pair m a b = Some (lex m (a ++ b)).
Proof.
  unfold memcmp_pair, zlength. revert a; induction m as [| x m IH]; intros [| y a] H; cbn [length] in H; try lia.
  - apply (memcmp_lex [] b). cbn. lia.
  - apply (memcmp_lex (x :: m) b). cbn. lia.
  - cbn [length app skipn memcmp lex]. destruct (Z.eqb_spec x y) as [-> | Hn].
    + apply IH. lia.
    + destruct (x - y) eqn:E; try reflexivity. lia.
Qed.

(** A lexicographic order of strings of the same size *)
Lemma lex_up a b s : length a = length b -> length b = length s -> lex a b < 0 -> 0 <= lex a s -> 0 < lex b s.
Proof.
  revert b s; induction a as [| x a IH]; intros [| y b] [| z s]; cbn; try lia; try discriminate.
  intros [= H1] [= H2]. destruct (Z.eqb_spec x y) as [-> | Hxy].
  - destruct (Z.eqb_spec y z); [apply IH; lia | lia].
  - destruct (Z.eqb_spec x z) as [-> |], (Z.eqb_spec y z); lia.
Qed.

Lemma order_up a b s : order a b < 0 -> 0 <= order a s -> 0 < order b s.
Proof.
  unfold order, zlength. destruct (Z.eqb_spec (Z.of_nat (length a)) (Z.of_nat (length b))) as [H1 | H1];
    destruct (Z.eqb_spec (Z.of_nat (length b)) (Z.of_nat (length s))) as [H2 | H2];
    destruct (Z.eqb_spec (Z.of_nat (length a)) (Z.of_nat (length s))) as [H3 | H3]; try lia.
  intros. apply (lex_up a b s); lia.
Qed.

Lemma order_zero a b : order a b = 0 <-> a = b.
Proof.
  unfold order, zlength. destruct (Z.eqb_spec (Z.of_nat (length a)) (Z.of_nat (length b))); [apply lex_eq |].
  split; [lia |]. intros ->. lia.
Qed.

Lemma sorted_at t i j a b : sorted_table t -> i < j -> at_index t i = Some a -> at_index t j = Some b -> before a b.
Proof.
  intros Ht. revert i j. induction Ht as [| x t Ht IH Hx]; intros i j Hij Hi Hj.
  - apply at_index_bound in Hi. unfold zlength in Hi. cbn in Hi. lia.
  - apply at_index_cons in Hi as [[-> ->] | [Hi Hi']], Hj as [[-> ->] | [Hj Hj']]; try lia.
    + rewrite Forall_forall in Hx. apply Hx. apply at_index_in. eauto.
    + eapply IH; [| eassumption ..]. lia.
Qed.

Lemma sorted_unique t i j a : sorted_table t -> at_index t i = Some a -> at_index t j = Some a -> i = j.
Proof.
  intros Ht Hi Hj. assert (Hne : ~ before a a) by (unfold before; rewrite (proj2 (order_zero a a) eq_refl); lia).
  destruct (Z.lt_trichotomy i j) as [H | [H | H]]; [| exact H |]; exfalso; apply Hne; eapply sorted_at; eassumption.
Qed.

Lemma index_of_some t s i : sorted_table t -> (index_of s t = Some i <-> at_index t i = Some s).
Proof.
  intros Ht. revert i. induction Ht as [| x t Ht IH Hx]; intros i; cbn [index_of].
  - split; [discriminate |]. intros H. apply at_index_bound in H. unfold zlength in H. cbn in H. lia.
  - rewrite at_index_cons. destruct (list_eq_dec Z.eq_dec x s) as [-> | Hn].
    + split; [intros [= <-]; now left |]. intros [[-> _] | [H1 H2]]; [reflexivity |].
      exfalso. rewrite Forall_forall in Hx. assert (In s t) as Hs by (apply at_index_in; eauto). apply Hx in Hs. unfold before in Hs.
      rewrite (proj2 (order_zero s s) eq_refl) in Hs. lia.
    + destruct (index_of s t) as [k |] eqn:E; cbn [option_map].
      * specialize (IH k). split.
        -- intros Hi. assert (i = 1 + k) as -> by congruence. right. pose proof (proj1 IH eq_refl) as Hk. pose proof (at_index_bound _ _ _ Hk). split; [lia |].
           replace (1 + k - 1) with k by lia. exact Hk.
        -- intros [[_ ->] | [H1 H2]]; [congruence |]. f_equal. pose proof (sorted_unique t k (i - 1) s Ht (proj1 IH eq_refl) H2). lia.
      * split; [discriminate |]. intros [[_ ->] | [_ H]]; [congruence |]. apply IH in H. discriminate.
Qed.

Lemma index_of_none t s : sorted_table t -> (index_of s t = None <-> ~ In s t).
Proof.
  intros Ht. rewrite at_index_in. split.
  - intros H [i Hi]. apply (index_of_some _ _ _ Ht) in Hi. congruence.
  - intros H. destruct (index_of s t) eqn:E; [| reflexivity]. exfalso. apply H. exists z. now apply index_of_some.
Qed.

(** What the binary search finds, when the comparisons grow with the number *)
Lemma search_loop_spec compare c missing fuel : forall first last, 0 <= first -> 2 * last < B32 -> Z.max 0 (last - first) < Z.of_nat fuel ->
  (forall i, first <= i < last -> compare i = Some (c i)) -> (forall i j, first <= i < j -> j < last -> 0 <= c i -> 0 < c j) ->
  exists r, search_loop compare fuel first last missing = Some r
    /\ ((first <= r < last /\ c r = 0) \/ (r = missing /\ forall i, first <= i < last -> c i <> 0)).
Proof.
  induction fuel as [| fuel IH]; intros first last Hf Hb Hfuel Hc Hup; [lia |]. cbn [search_loop].
  destruct (Z.ltb_spec first last) as [Hlt | Hge].
  - rewrite u32_small by (unfold is_u32; lia). cbv zeta. set (middle := (first + last) / 2).
    assert (Hm : first <= middle < last) by (subst middle; zmod). rewrite Hc by exact Hm.
    destruct (Z.eqb_spec (c middle) 0) as [H0 | H0]; [eauto 6 |]. destruct (Z.ltb_spec 0 (c middle)) as [Hp | Hn].
    + destruct (IH first middle) as (r & Hr & Hcase); try lia.
      { intros i Hi. apply Hc. lia. } { intros i j H1 H2 H3. apply (Hup i j); lia. }
      exists r. split; [exact Hr |]. destruct Hcase as [[H1 H2] | [H1 H2]]; [left; split; [lia | exact H2] |]. right. split; [exact H1 |].
      intros i Hi. destruct (Z.lt_ge_cases i middle); [apply H2; lia |]. destruct (Z.eq_dec i middle) as [-> | Hne]; [lia |].
      assert (0 < c i) by (apply (Hup middle i); lia). lia.
    + destruct (IH (middle + 1) last) as (r & Hr & Hcase); try lia.
      { intros i Hi. apply Hc. lia. } { intros i j H1 H2 H3. apply (Hup i j); lia. }
      exists r. split; [exact Hr |]. destruct Hcase as [[H1 H2] | [H1 H2]]; [left; split; [lia | exact H2] |]. right. split; [exact H1 |].
      intros i Hi. destruct (Z.lt_ge_cases middle i); [apply H2; lia |]. destruct (Z.eq_dec i middle) as [-> | Hne]; [lia |].
      intros Hi0. assert (0 < c middle) by (apply (Hup i middle); lia). lia.
  - exists missing. split; [reflexivity |]. right. split; [reflexivity |]. intros; lia.
Qed.

Lemma sorted_last t i a : sorted_table t -> at_index t (zlength t - 1) = Some a -> forall s, at_index t i = Some s -> zlength s <= zlength a.
Proof.
  intros Ht Ha s Hs. pose proof (at_index_bound _ _ _ Hs). destruct (Z.eq_dec i (zlength t - 1)) as [-> |]; [assert (a = s) as -> by congruence; lia |].
  assert (before s a) as Hb by (eapply sorted_at; [exact Ht | | exact Hs | exact Ha]; lia). unfold before, order in Hb.
  destruct (zlength s =? zlength a) eqn:E; zbool; lia.
Qed.

Section Searches.
Context {T : magic_tables} (HT : tables_ok T).

Lemma search_block_spec s compare : zlength s < B32 -> (forall m, zlength m = zlength s -> compare m = Some (lex m s)) ->
  search_block T (zlength s) compare = Some (match index_of s (lit_magic_strings T) with Some i => i | None => LIT_MAGIC_STRING__COUNT T end).
Proof.
  intros Hs Hcmp. pose proof (magic_sorted T HT) as Hsort. pose proof (magic_some T HT) as Hsome. pose proof (magic_count T HT) as Hcount.
  unfold search_block, LIT_NON_INTERNAL_MAGIC_STRING__COUNT, lit_get_magic_string_size, lit_get_magic_string_utf8.
  destruct (at_index_lookup (lit_magic_strings T) (zlength (lit_magic_strings T) - 1) ltac:(lia)) as [largest Hl]. rewrite Hl. cbn [option_map].
  destruct (Z.ltb_spec (zlength largest) (zlength s)) as [Hlt | Hle].
  { destruct (index_of s (lit_magic_strings T)) as [i |] eqn:E; [| reflexivity]. exfalso. apply (index_of_some _ _ _ Hsort) in E.
    pose proof (sorted_last _ _ _ Hsort Hl _ E). lia. }
  assert (Hin : In largest (lit_magic_strings T)) by (apply at_index_in; eauto).
  destruct (magic_blocks T HT (zlength s)) as (b1 & Hb1 & [Hr1 Hi1]); [apply zlength_nonneg | exists largest; split; [exact Hin | lia] |].
  destruct (magic_blocks T HT (zlength s + 1)) as (b2 & Hb2 & [Hr2 Hi2]); [pose proof (zlength_nonneg s); lia | exists largest; split; [exact Hin | lia] |].
  rewrite Hb1, Hb2. unfold zlength in Hcount, Hr2, Hr1. fold (zlength (lit_magic_strings T)) in *.
  set (c := fun i => match at_index (lit_magic_strings T) i with Some m => lex m s | None => 0 end).
  assert (Hat : forall i, b1 <= i < b2 -> exists m, at_index (lit_magic_strings T) i = Some m /\ zlength m = zlength s).
  { intros i Hi. destruct (at_index_lookup (lit_magic_strings T) i ltac:(lia)) as [m Hm]. exists m. split; [exact Hm |].
    pose proof (proj1 (Hi1 i m Hm)). pose proof (fun H => proj2 (Hi2 i m Hm) H). lia. }
  destruct (search_loop_spec (fun middle => match at_index (lit_magic_strings T) middle with Some m => compare m | None => None end) c
    (LIT_MAGIC_STRING__COUNT T) (S (Z.to_nat (b2 - b1))) b1 b2) as (r & Hr & Hcase); try lia.
  { intros i Hi. destruct (Hat i Hi) as (m & Hm & Hz). unfold c. rewrite Hm. now apply Hcmp. }
  { intros i j H1 H2 H3. destruct (Hat i ltac:(lia)) as (m & Hm & Hz), (Hat j ltac:(lia)) as (m' & Hm' & Hz'). unfold c in *. rewrite Hm, Hm' in *.
    assert (before m m') as Hb by (eapply sorted_at; [exact Hsort | | exact Hm | exact Hm']; lia). unfold before, order in Hb.
    rewrite Hz, Hz', Z.eqb_refl in Hb. apply (lex_up m m' s); unfold zlength in *; lia. }
  rewrite Hr. f_equal. destruct Hcase as [[Hrange H0] | [-> Hno]].
  - destruct (Hat r Hrange) as (m & Hm & Hz). unfold c in H0. rewrite Hm in H0. apply lex_eq in H0 as ->.
    now rewrite (proj2 (index_of_some _ _ _ Hsort) Hm).
  - destruct (index_of s (lit_magic_strings T)) as [i |] eqn:E; [| reflexivity]. exfalso. apply (index_of_some _ _ _ Hsort) in E.
    apply (Hno i); [| unfold c; rewrite E; now apply lex_eq]. pose proof (proj2 (Hi1 i s E)). pose proof (fun H => proj1 (Hi2 i s E) H). lia.
Qed.

Lemma search_ex_spec s compare : zlength s < B32 -> (forall m, zlength m = zlength s -> compare m = Some (lex m s)) ->
  search_ex T (zlength s) compare
    = Some (match index_of s (lit_magic_string_ex_array T) with Some i => i | None => lit_get_magic_string_ex_count T end).
Proof.
  intros Hs Hcmp. pose proof (ex_sorted T HT) as Hsort. pose proof (ex_count T HT) as Hcount. unfold LIT_EXTERNAL_MAGIC_STRING_LIMIT in Hcount.
  unfold search_ex, lit_get_magic_string_ex_count, lit_get_magic_string_ex_size, lit_get_magic_string_ex_utf8. set (t := lit_magic_string_ex_array T) in *.
  pose proof (zlength_nonneg t) as Hnn. destruct (Z.eqb_spec (zlength t) 0) as [H0 | H0].
  { destruct t; [reflexivity |]. unfold zlength in H0. cbn in H0. lia. }
  destruct (at_index_lookup t (zlength t - 1) ltac:(lia)) as [largest Hl]. rewrite Hl. cbn [option_map].
  destruct (Z.ltb_spec (zlength largest) (zlength s)) as [Hlt | Hle].
  { destruct (index_of s t) as [i |] eqn:E; [| reflexivity]. exfalso. apply (index_of_some _ _ _ Hsort) in E.
    pose proof (sorted_last _ _ _ Hsort Hl _ E). lia. }
  set (c := fun i => match at_index t i with Some m => if zlength s =? zlength m then lex m s else if zlength m <? zlength s then -1 else 1 | None => 0 end).
  assert (Hsign : forall i m, at_index t i = Some m -> (0 <= c i -> 0 <= order m s) /\ (0 < order m s -> 0 < c i) /\ (c i = 0 <-> m = s)).
  { intros i m Hm. unfold c. rewrite Hm. pose proof (order_zero m s). unfold order in *. rewrite (Z.eqb_sym (zlength m)) in *. destruct (Z.eqb_spec (zlength s) (zlength m)).
    - splits; tauto || lia.
    - destruct (Z.ltb_spec (zlength m) (zlength s)); splits; try lia; split; intros H'; try lia; subst; lia. }
  match goal with |- search_loop ?f _ _ _ _ = _ => destruct (search_loop_spec f c (zlength t) (S (Z.to_nat (zlength t))) 0 (zlength t)) as (r & Hr & Hcase); try lia end.
  { intros i Hi. destruct (at_index_lookup t i Hi) as [m Hm]. unfold c. rewrite Hm. destruct (Z.eqb_spec (zlength s) (zlength m)); [apply Hcmp; lia |].
    now destruct (zlength m <? zlength s). }
  { intros i j H1 H2 H3. destruct (at_index_lookup t i ltac:(lia)) as [m Hm], (at_index_lookup t j ltac:(lia)) as [m' Hm'].
    apply (Hsign j m' Hm'). eapply order_up; [| apply (Hsign i m Hm); exact H3]. eapply sorted_at; [exact Hsort | | exact Hm | exact Hm']. lia. }
  rewrite Hr. f_equal. destruct Hcase as [[Hrange Hc0] | [-> Hno]].
  - destruct (at_index_lookup t r Hrange) as [m Hm]. apply (Hsign r m Hm) in Hc0 as ->. now rewrite (proj2 (index_of_some _ _ _ Hsort) Hm).
  - destruct (index_of s t) as [i |] eqn:E; [| reflexivity]. exfalso. apply (index_of_some _ _ _ Hsort) in E.
    apply (Hno i); [exact (at_index_bound _ _ _ E) |]. now apply (Hsign i s E).
Qed.

Lemma is_magic_spec s : zlength s < B32 ->
  lit_is_utf8_string_magic T s = Some (match index_of s (lit_magic_strings T) with Some i => i | None => LIT_MAGIC_STRING__COUNT T end).
Proof. intros H. apply search_block_spec; [exact H |]. intros m Hm. apply memcmp_lex. unfold zlength in Hm. lia. Qed.

Lemma is_ex_magic_spec s : zlength s < B32 ->
  lit_is_ex_utf8_string_magic T s = Some (match index_of s (lit_magic_string_ex_array T) with Some i => i | None => lit_get_magic_string_ex_count T end).
Proof. intros H. apply search_ex_spec; [exact H |]. intros m Hm. apply memcmp_lex. unfold zlength in Hm. lia. Qed.

Lemma pair_total (s1 s2 : list Z) : zlength s1 + zlength s2 < B32 -> u32 (zlength s1 + zlength s2) = zlength (s1 ++ s2).
Proof. intros H. rewrite zlength_app. pose proof (zlength_nonneg s1). pose proof (zlength_nonneg s2). apply u32_small. unfold is_u32. lia. Qed.

Lemma is_pair_magic_spec s1 s2 : zlength s1 + zlength s2 < B32 -> lit_is_utf8_string_pair_magic T s1 s2 = lit_is_utf8_string_magic T (s1 ++ s2).
Proof.
  intros H. rewrite is_magic_spec by (rewrite zlength_app; exact H). unfold lit_is_utf8_string_pair_magic. rewrite pair_total by exact H.
  apply search_block_spec; [rewrite zlength_app; exact H |]. intros m Hm. apply memcmp_pair_lex. now rewrite Hm, zlength_app.
Qed.

Lemma is_ex_pair_magic_spec s1 s2 : zlength s1 + zlength s2 < B32 -> lit_is_ex_utf8_string_pair_magic T s1 s2 = lit_is_ex_utf8_string_magic T (s1 ++ s2).
Proof.
  intros H. rewrite is_ex_magic_spec by (rewrite zlength_app; exact H). unfold lit_is_ex_utf8_string_pair_magic. rewrite pair_total by exact H.
  apply search_ex_spec; [rewrite zlength_app; exact H |]. intros m Hm. apply memcmp_pair_lex. now rewrite Hm, zlength_app.
Qed.
End Searches.

(** ** Checking tables *)

Lemma adjacent_sorted t : adjacent t = true -> sorted_table t.
Proof.
  induction t as [| a t IH]; [constructor |]. intros H. destruct t as [| b t]; [repeat constructor |].
  cbn [adjacent] in H. zbool. specialize (IH ltac:(assumption)). constructor; [exact IH |]. constructor; [assumption |].
  inversion IH as [| ? ? _ Hb]; subst. eapply Forall_impl; [| exact Hb]. intros c Hc. unfold before in *.
  destruct (Z.lt_ge_cases (order a c) 0) as [| Hge]; [assumption |]. pose proof (order_up a b c ltac:(assumption) Hge). lia.
Qed.

Lemma check_block_ok t k b : check_block t k b = true -> block_start_ok t k b.
Proof.
  unfold check_block. intros H. zbool. split; [lia |]. intros i s Hi. apply at_index_some in Hi as [Hi Hn].
  match goal with H1 : forallb _ (firstn _ _) = true, H2 : forallb _ (skipn _ _) = true |- _ => rewrite forallb_forall in H1, H2; rename H1 into Hlow; rename H2 into Hhigh end.
  split; intros Hb.
  - apply Z.leb_le, Hhigh. rewrite <- (firstn_skipn (Z.to_nat b) t) in Hn. rewrite nth_error_app2 in Hn; [eapply nth_error_In; exact Hn |].
    rewrite length_firstn. lia.
  - destruct (Z.lt_ge_cases i b) as [Hlt |]; [exfalso | lia]. assert (zlength s <? k = true) as Hs; [| zbool; lia].
    apply Hlow. rewrite <- (firstn_skipn (Z.to_nat b) t) in Hn. rewrite nth_error_app1 in Hn; [eapply nth_error_In; exact Hn |].
    rewrite length_firstn. unfold zlength in *. lia.
Qed.

Lemma check_blocks_ok t starts : check_blocks t starts = true -> forall k, 0 <= k -> (exists s, In s t /\ k <= zlength s + 1) ->
  exists b, at_index starts k = Some b /\ block_start_ok t k b.
Proof.
  unfold check_blocks. intros H k Hk (s & Hs & Hks). apply andb_prop in H as [H1 H2]. rewrite forallb_forall in H1, H2. specialize (H2 s Hs). zbool.
  specialize (H1 (Z.to_nat k)). rewrite in_seq, Z2Nat.id in H1 by lia. unfold zlength in H2 at 2. specialize (H1 ltac:(unfold zlength in *; lia)).
  destruct (at_index starts k) as [b |]; [| discriminate]. exists b. split; [reflexivity |]. now apply check_block_ok.
Qed.

Lemma check_ascii_ok t : check_ascii t = true -> Forall (Forall (fun b => 0 <= b < 128)) t.
Proof.
  unfold check_ascii. intros H. rewrite forallb_forall in H. apply Forall_forall. intros s Hs. specialize (H s Hs). rewrite forallb_forall in H.
  apply Forall_forall. intros b Hb. specialize (H b Hb). zbool. lia.
Qed.

Lemma check_digits_ok t : check_digits t = true -> Forall (fun s => match s with c :: _ => ~ 48 <= c <= 57 | [] => True end) t.
Proof.
  unfold check_digits. intros H. rewrite forallb_forall in H. apply Forall_forall. intros s Hs. specialize (H s Hs). destruct s; [exact I |].
  destruct (Z.leb_spec 48 z), (Z.leb_spec z 57); cbn in H; try discriminate; lia.
Qed.
