(* ===== verification/MagicTable.v ===== *)
(** * The generated table of magic strings

    src/jjs-core/lit/lit-magic-strings.inc.h as the preprocessor selects its
    entries with the default options of src/jjs-core/config.h, and the proof that
    it has the order the searches of MagicStrings rely on. *)
From Stdlib Require Import ZArith List Lia Bool Sorted String Ascii.
From S2P Require Import Prelude LitStrings MagicStrings.
Import ListNotations.
#[local] Open Scope Z_scope.

Definition bytes_of_string (s : string) : list Z := map (fun a => Z.of_N (N_of_ascii a)) (list_ascii_of_string s).

Definition default_names : list string := [
  EmptyString; " "%string; "*"%string; ","%string; "/"%string; "E"%string; "["%string; "]"%string; "PI"%string; "at"%string; "gc"%string;
  "id"%string; "is"%string; "js"%string; "of"%string; "or"%string; "os"%string; "LN2"%string; "Map"%string; "NaN"%string; "Set"%string; "UTC"%string;
  "abs"%string; "add"%string; "aix"%string; "all"%string; "and"%string; "any"%string; "arm"%string; "cos"%string; "cwd"%string; "exp"%string;
  "for"%string; "get"%string; "has"%string; "jjs"%string; "log"%string; "map"%string; "max"%string; "min"%string; "now"%string; "pop"%string;
  "pow"%string; "ppc"%string; "raw"%string; "set"%string; "sin"%string; "sub"%string; "tan"%string; "url"%string; "x64"%string; "xor"%string;
  "(?:)"%string; "Date"%string; "JSON"%string; "LN10"%string; "Math"%string; "Null"%string; "acos"%string; "arch"%string; "asin"%string;
  "atan"%string; "bind"%string; "call"%string; "cbrt"%string; "ceil"%string; "cosh"%string; "done"%string; "eval"%string; "exec"%string;
  "fill"%string; "find"%string; "flat"%string; "from"%string; "ia32"%string; "imul"%string; "join"%string; "keys"%string; "load"%string;
  "log2"%string; "main"%string; "mips"%string; "name"%string; "next"%string; "none"%string; "null"%string; "path"%string; "pmap"%string;
  "push"%string; "race"%string; "s390"%string; "seal"%string; "sign"%string; "sinh"%string; "size"%string; "some"%string; "sort"%string;
  "sqrt"%string; "tanh"%string; "test"%string; "then"%string; "trim"%string; "true"%string; "vmod"%string; "wait"%string; "with"%string;
  "Array"%string; "Error"%string; "LOG2E"%string; "Proxy"%string; "SQRT2"%string; "acosh"%string; "apply"%string; "arm64"%string; "asinh"%string;
  "atan2"%string; "atanh"%string; "cache"%string; "catch"%string; "cause"%string; "clear"%string; "clz32"%string; "deref"%string; "every"%string;
  "expm1"%string; "false"%string; "flags"%string; "floor"%string; "flush"%string; "hypot"%string; "index"%string; "input"%string; "isNaN"%string;
  "linux"%string; "log10"%string; "log1p"%string; "match"%string; "parse"%string; "ppc64"%string; "proxy"%string; "round"%string; "s390x"%string;
  "shift"%string; "slice"%string; "split"%string; "stack"%string; "store"%string; "sunos"%string; "throw"%string; "trunc"%string; "value"%string;
  "win32"%string; "write"%string; "<eval>"%string; "BigInt"%string; "LOG10E"%string; "Module"%string; "Number"%string; "Object"%string;
  "RegExp"%string; "Script"%string; "String"%string; "Symbol"%string; "assign"%string; "bigint"%string; "buffer"%string; "callee"%string;
  "caller"%string; "charAt"%string; "concat"%string; "create"%string; "darwin"%string; "delete"%string; "dotAll"%string; "errors"%string;
  "escape"%string; "exists"%string; "filter"%string; "format"%string; "freeze"%string; "fround"%string; "getDay"%string; "global"%string;
  "hasOwn"%string; "isView"%string; "keyFor"%string; "length"%string; "loaded"%string; "mipsel"%string; "module"%string; "notify"%string;
  "number"%string; "object"%string; "padEnd"%string; "random"%string; "reason"%string; "reduce"%string; "reject"%string; "remove"%string;
  "repeat"%string; "return"%string; "revoke"%string; "search"%string; "source"%string; "splice"%string; "status"%string; "stderr"%string;
  "stdout"%string; "sticky"%string; "string"%string; "substr"%string; "symbol"%string; "toJSON"%string; "values"%string; "Atomics"%string;
  "Boolean"%string; "EPSILON"%string; "Promise"%string; "Reflect"%string; "SQRT1_2"%string; "Symbol."%string; "WeakMap"%string; "WeakRef"%string;
  "WeakSet"%string; "boolean"%string; "compile"%string; "default"%string; "dirname"%string; "entries"%string; "exports"%string; "finally"%string;
  "flatMap"%string; "forEach"%string; "freebsd"%string; "getDate"%string; "getInt8"%string; "getTime"%string; "getYear"%string; "indexOf"%string;
  "isArray"%string; "loong64"%string; "message"%string; "openbsd"%string; "ownKeys"%string; "promise"%string; "replace"%string; "require"%string;
  "resolve"%string; "reverse"%string; "riscv64"%string; "setDate"%string; "setInt8"%string; "setTime"%string; "setYear"%string; "species"%string;
  "toFixed"%string; "trimEnd"%string; "unicode"%string; "unknown"%string; "unshift"%string; "valueOf"%string; "version"%string; "<source>"%string;
  "DataView"%string; "Function"%string; "Infinity"%string; "URIError"%string; "[object "%string; "commonjs"%string; "endsWith"%string;
  "exchange"%string; "filename"%string; "findLast"%string; "function"%string; "getHours"%string; "getInt16"%string; "getInt32"%string;
  "getMonth"%string; "getUint8"%string; "includes"%string; "isFinite"%string; "isFrozen"%string; "isSealed"%string; "iterator"%string;
  "matchAll"%string; "packages"%string; "padStart"%string; "parseInt"%string; "readFile"%string; "realpath"%string; "rejected"%string;
  "setHours"%string; "setInt16"%string; "setInt32"%string; "setMonth"%string; "setUint8"%string; "snapshot"%string; "subarray"%string;
  "toSorted"%string; "toString"%string; "trimLeft"%string; "unescape"%string; "writable"%string; "-Infinity"%string; "Arguments"%string;
  "EvalError"%string; "Generator"%string; "Int8Array"%string; "MAX_VALUE"%string; "MIN_VALUE"%string; "TypeError"%string; "Undefined"%string;
  "__proto__"%string; "anonymous"%string; "arguments"%string; "construct"%string; "decodeURI"%string; "encodeURI"%string; "extension"%string;
  "findIndex"%string; "fulfilled"%string; "getUTCDay"%string; "getUint16"%string; "getUint32"%string; "isInteger"%string; "lastIndex"%string;
  "multiline"%string; "prototype"%string; "revocable"%string; "setUint16"%string; "setUint32"%string; "stringify"%string; "substring"%string;
  "toSpliced"%string; "trimRight"%string; "trimStart"%string; "undefined"%string; "Int16Array"%string; "Int32Array"%string; "RangeError"%string;
  "TypedArray"%string; "Uint8Array"%string; "allSettled"%string; "byteLength"%string; "byteOffset"%string; "charCodeAt"%string; "copyWithin"%string;
  "enumerable"%string; "getFloat32"%string; "getFloat64"%string; "getMinutes"%string; "getSeconds"%string; "getUTCDate"%string; "globalThis"%string;
  "ignoreCase"%string; "isLockFree"%string; "parseFloat"%string; "replaceAll"%string; "setFloat32"%string; "setFloat64"%string; "setMinutes"%string;
  "setSeconds"%string; "setUTCDate"%string; "startsWith"%string; "toReversed"%string; "<anonymous>"%string; "ArrayBuffer"%string;
  "SyntaxError"%string; "Uint16Array"%string; "Uint32Array"%string; "codePointAt"%string; "constructor"%string; "description"%string;
  "fromEntries"%string; "getBigInt64"%string; "getFullYear"%string; "getUTCHours"%string; "getUTCMonth"%string; "hasInstance"%string;
  "lastIndexOf"%string; "reduceRight"%string; "setBigInt64"%string; "setFullYear"%string; "setUTCHours"%string; "setUTCMonth"%string;
  "toGMTString"%string; "toISOString"%string; "toLowerCase"%string; "toPrecision"%string; "toPrimitive"%string; "toStringTag"%string;
  "toUTCString"%string; "toUpperCase"%string; "unscopables"%string; "Float32Array"%string; "Float64Array"%string; "Invalid Date"%string;
  "Map Iterator"%string; "Set Iterator"%string; "configurable"%string; "fromCharCode"%string; "getBigUint64"%string; "isExtensible"%string;
  "isWellFormed"%string; "setBigUint64"%string; "toDateString"%string; "toTimeString"%string; "toWellFormed"%string; "AsyncFunction"%string;
  "BigInt64Array"%string; "asyncIterator"%string; "findLastIndex"%string; "fromCodePoint"%string; "getUTCMinutes"%string; "getUTCSeconds"%string;
  "isPrototypeOf"%string; "isSafeInteger"%string; "localeCompare"%string; "setUTCMinutes"%string; "setUTCSeconds"%string; "toExponential"%string;
  "withResolvers"%string; "AggregateError"%string; "Array Iterator"%string; "AsyncGenerator"%string; "BigUint64Array"%string;
  "ReferenceError"%string; "defineProperty"%string; "deleteProperty"%string; "getPrototypeOf"%string; "getUTCFullYear"%string;
  "hasOwnProperty"%string; "queueMicrotask"%string; "setPrototypeOf"%string; "setUTCFullYear"%string; "toLocaleString"%string;
  "String Iterator"%string; "compareExchange"%string; "getMilliseconds"%string; "setMilliseconds"%string; "MAX_SAFE_INTEGER"%string;
  "MIN_SAFE_INTEGER"%string; "__defineGetter__"%string; "__defineSetter__"%string; "__lookupGetter__"%string; "__lookupSetter__"%string;
  "defineProperties"%string; "BYTES_PER_ELEMENT"%string; "GeneratorFunction"%string; "NEGATIVE_INFINITY"%string; "POSITIVE_INFINITY"%string;
  "SharedArrayBuffer"%string; "Uint8ClampedArray"%string; "getTimezoneOffset"%string; "preventExtensions"%string; "toLocaleLowerCase"%string;
  "toLocaleUpperCase"%string; "decodeURIComponent"%string; "encodeURIComponent"%string; "getUTCMilliseconds"%string; "isConcatSpreadable"%string;
  "setUTCMilliseconds"%string; "toLocaleDateString"%string; "toLocaleTimeString"%string; "getOwnPropertyNames"%string; "propertyIsEnumerable"%string;
  "getOwnPropertySymbols"%string; "AsyncGeneratorFunction"%string; "RegExp String Iterator"%string; "getOwnPropertyDescriptor"%string;
  "getOwnPropertyDescriptors"%string; "function () { [native code] }"%string; "function () { /* ecmascript */ }"%string
].

Definition default_block_starts : list Z := [0; 1; 8; 17; 52; 106; 153; 214; 262; 303; 337; 365; 394; 408; 422; 436; 440; 447; 457; 464; 465; 466; 467; 469; 469; 470; 471; 471; 471; 471; 472; 472; 472; 473].

(** 473 strings with contents, and 29 internal ones (lit-magic-strings.h) *)
Definition default_tables : magic_tables := mk_magic (map bytes_of_string default_names) default_block_starts 502 [].

Lemma default_tables_ok : tables_ok default_tables.
Proof.
  split.
  - apply adjacent_sorted. now vm_compute.
  - reflexivity.
  - apply check_blocks_ok. now vm_compute.
  - now split; vm_compute.
  - reflexivity.
  - apply check_ascii_ok. now vm_compute.
  - apply check_digits_ok. now vm_compute.
  - constructor.
  - now vm_compute.
  - constructor.
Qed.

(** With registered strings of the embedder *)
Lemma ex_set_ok T items : tables_ok T -> sorted_table items -> zlength items <= LIT_EXTERNAL_MAGIC_STRING_LIMIT ->
  Forall (fun s => zlength s < B32 /\ exists units, Forall is_u16 units /\ s = cesu8_encode units) items ->
  tables_ok (lit_magic_strings_ex_set T items).
Proof.
  intros [] H1 H2 H3. assert ((LIT_EXTERNAL_MAGIC_STRING_LIMIT <? zlength items) = false) as E by now apply Z.ltb_ge.
  unfold lit_magic_strings_ex_set. rewrite E. split; assumption.
Qed.

Lemma searches_found T0 items s1 s2 : tables_ok T0 -> sorted_table items -> zlength items <= LIT_EXTERNAL_MAGIC_STRING_LIMIT ->
  Forall (fun s => zlength s < B32 /\ exists units, Forall is_u16 units /\ s = cesu8_encode units) items -> zlength s1 + zlength s2 < B32 ->
  let T := lit_magic_strings_ex_set T0 items in
  let found t count s := match index_of s t with Some i => i | None => count end in
  lit_is_utf8_string_magic T s1 = Some (found (lit_magic_strings T) (LIT_MAGIC_STRING__COUNT T) s1)
  /\ lit_is_ex_utf8_string_magic T s1 = Some (found items (lit_get_magic_string_ex_count T) s1)
  /\ lit_is_utf8_string_pair_magic T s1 s2 = Some (found (lit_magic_strings T) (LIT_MAGIC_STRING__COUNT T) (s1 ++ s2))
  /\ lit_is_ex_utf8_string_pair_magic T s1 s2 = Some (found items (lit_get_magic_string_ex_count T) (s1 ++ s2))
  /\ (forall t s i, t = lit_magic_strings T \/ t = items -> (index_of s t = Some i <-> at_index t i = Some s)).
Proof.
  intros HT0 Hsort Hlimit Htext Hs T found. pose proof (ex_set_ok T0 items HT0 Hsort Hlimit Htext) as HT. fold T in HT.
  assert (E : items = lit_magic_string_ex_array T) by (unfold T, lit_magic_strings_ex_set; cbn; now rewrite (proj2 (Z.ltb_ge _ _) Hlimit)).
  unfold found. rewrite E. pose proof (zlength_nonneg s1). pose proof (zlength_nonneg s2). splits.
  - apply is_magic_spec; [exact HT | lia].
  - apply is_ex_magic_spec; [exact HT | lia].
  - rewrite is_pair_magic_spec, is_magic_spec by (assumption || (rewrite zlength_app; lia)). reflexivity.
  - rewrite is_ex_pair_magic_spec, is_ex_magic_spec by (assumption || (rewrite zlength_app; lia)). reflexivity.
  - intros t s i [-> | ->]; apply index_of_some; [apply (magic_sorted T HT) | apply (ex_sorted T HT)].
Qed.

(** ** Properties *)

(** C38: Magic strings: with the engine's table and any strings the embedder
    registered in the order that jjs_register_magic_strings requires, the searches
    for one string and for a pair of strings, in the built-in and in the embedder's
    table, end and find the index of the string when the table has it, and the
    count otherwise. *)
Theorem lit_magic_search_correct items s1 s2 : sorted_table items -> zlength items <= LIT_EXTERNAL_MAGIC_STRING_LIMIT ->
  Forall (fun s => zlength s < B32 /\ exists units, Forall is_u16 units /\ s = cesu8_encode units) items -> zlength s1 + zlength s2 < B32 ->
  let T := lit_magic_strings_ex_set default_tables items in
  let found t count s := match index_of s t with Some i => i | None => count end in
  lit_is_utf8_string_magic T s1 = Some (found (lit_magic_strings T) (LIT_MAGIC_STRING__COUNT T) s1)
  /\ lit_is_ex_utf8_string_magic T s1 = Some (found items (lit_get_magic_string_ex_count T) s1)
  /\ lit_is_utf8_string_pair_magic T s1 s2 = Some (found (lit_magic_strings T) (LIT_MAGIC_STRING__COUNT T) (s1 ++ s2))
  /\ lit_is_ex_utf8_string_pair_magic T s1 s2 = Some (found items (lit_get_magic_string_ex_count T) (s1 ++ s2))
  /\ (forall t s i, t = lit_magic_strings T \/ t = items -> (index_of s t = Some i <-> at_index t i = Some s)).
Proof. intros H1 H2 H3 H4. exact (searches_found default_tables items s1 s2 default_tables_ok H1 H2 H3 H4). Qed.

(** The embedder knows "abc"; the strings are "len" and "gth", and "a" and "bc" *)
Lemma lit_magic_search_witness : let T := lit_magic_strings_ex_set default_tables [[97; 98; 99]] in
  lit_is_utf8_string_pair_magic T [108; 101; 110] [103; 116; 104] = lit_is_utf8_string_magic T [108; 101; 110; 103; 116; 104]
  /\ lit_is_utf8_string_magic T [108; 101; 110; 103; 116; 104] <> Some (LIT_MAGIC_STRING__COUNT T) /\ lit_is_ex_utf8_string_pair_magic T [97] [98; 99] = Some 0.
Proof.
  assert (Hs : sorted_table [[97; 98; 99]]) by (repeat constructor).
  assert (Ht : Forall (fun s => zlength s < B32 /\ exists units, Forall is_u16 units /\ s = cesu8_encode units) [[97; 98; 99]]).
  { repeat constructor. exists [97; 98; 99]. split; [repeat constructor; cbv; discriminate | reflexivity]. }
  destruct (lit_magic_search_correct [[97; 98; 99]] [108; 101; 110] [103; 116; 104] Hs ltac:(now vm_compute) Ht ltac:(now vm_compute)) as (_ & _ & E & _).
  destruct (lit_magic_search_correct [[97; 98; 99]] [108; 101; 110; 103; 116; 104] [] Hs ltac:(now vm_compute) Ht ltac:(now vm_compute)) as (E' & _).
  destruct (lit_magic_search_correct [[97; 98; 99]] [97] [98; 99] Hs ltac:(now vm_compute) Ht ltac:(now vm_compute)) as (_ & _ & _ & Ex & _).
  cbv zeta in *. split; [exact (eq_trans E (eq_sym E')) |]. split.
  - vm_compute. discriminate.
  - exact (eq_trans Ex eq_refl).
Defined.
