(* ===== verification/StringData.v ===== *)
(** * Strings in memory: layouts and access (src/jjs-core/ecma/base/ecma-helpers-string.c)

    A string pointer is a word.  An odd word is a direct string: the number of a
    magic string, or an integer.  Other words are addresses of blocks, whose
    first word holds the reference count, the flag of static strings, and the
    container, the layout of the rest.

    This file has the layouts of ecma-globals.h and the functions that only read
    the memory; they are functions of the blocks, and [None] is an access beyond
    an object.  A pointer to characters with its size is the list of the bytes. *)
From Stdlib Require Import ZArith Lia Bool List.
From stdpp Require Import base gmap list.
From S2P Require Import Prelude LitChars LitStrings JmemHeap JmemPointers Values BlockHeap MagicStrings.
Import ListNotations.
#[local] Open Scope Z_scope.

(** ** Layouts *)

Definition ECMA_STRING_CONTAINER_HEAP_UTF8_STRING : Z := 0.
Definition ECMA_STRING_CONTAINER_LONG_OR_EXTERNAL_STRING : Z := 1.
Definition ECMA_STRING_CONTAINER_UINT32_IN_DESC : Z := 2.
Definition ECMA_STRING_CONTAINER_HEAP_ASCII_STRING : Z := 3.
Definition ECMA_STRING_CONTAINER_MAGIC_STRING_EX : Z := 4.
Definition ECMA_STRING_CONTAINER_SYMBOL : Z := 5.
Definition ECMA_STRING_CONTAINER_MASK : Z := 7.
Definition ECMA_STRING_REF_ONE : Z := 16.
Definition ECMA_STRING_MAX_REF : Z := 4294967280.
Definition ECMA_STATIC_STRING_FLAG : Z := 8.
Definition ECMA_MAX_CHARS_IN_STRINGIFIED_UINT32 : Z := 10.
Definition ECMA_STRING_NOT_ARRAY_INDEX : Z := 4294967295.
Definition UINT32_MAX : Z := 4294967295.

(** Sizes of the structures *)
Definition sizeof_ecma_string_t : Z := 8.
Definition sizeof_ecma_short_string_t : Z := 12.
Definition sizeof_ecma_long_string_t : Z := 24.
Definition sizeof_ecma_external_string_t : Z := 32.
Definition sizeof_ecma_extended_string_t : Z := 12.
Definition sizeof_ecma_number_t : Z := 8.
Definition sizeof_ecma_extended_primitive_t : Z := 8.
Definition ECMA_ASCII_STRING_HEADER_SIZE : Z := sizeof_ecma_string_t + 1.

(** What follows the two words of the header.  [SHORT], [LONG] and [EXTERNAL]
    have the fields size and length; the string of [EXTERNAL] belongs to the
    embedder *)
Inductive string_data :=
| HEAD
| ASCII (size_field : Z) (buffer : list Z)
| SHORT (size length : Z) (buffer : list Z)
| LONG (size length : Z) (buffer : list Z)
| EXTERNAL (size length : Z) (string : list Z) (user : Z)
| EXTENDED (symbol_descriptor : Z).

(** [u] is the hash, the number of an external magic string, or an integer *)
Record ecma_string_t := mk_string { refs_and_container : Z; u : Z; data : string_data }.

(** The blocks of values and of string builders.  Of an object only the word with
    the reference count is described *)
Inductive content :=
| BLOCK_STRING (s : ecma_string_t)
| BLOCK_BUILDER (current_size : Z) (buffer : list Z)
| BLOCK_NUMBER (number : Z)
| BLOCK_OBJECT (type_flags_refs : Z)
| BLOCK_EXCEPTION (refs_and_type value : Z)
| BLOCK_BIGINT (refs_and_type bigint_sign_and_size : Z) (digits : list Z).

Definition data_size (d : string_data) : Z :=
  match d with
  | HEAD => sizeof_ecma_string_t
  | ASCII _ buffer => ECMA_ASCII_STRING_HEADER_SIZE + zlength buffer
  | SHORT _ _ buffer => sizeof_ecma_short_string_t + zlength buffer
  | LONG _ _ buffer => sizeof_ecma_long_string_t + zlength buffer
  | EXTERNAL _ _ _ _ => sizeof_ecma_external_string_t
  | EXTENDED _ => sizeof_ecma_extended_string_t
  end.

Definition content_size (c : content) : Z :=
  match c with
  | BLOCK_STRING s => data_size (data s)
  | BLOCK_BUILDER _ buffer => ECMA_ASCII_STRING_HEADER_SIZE + zlength buffer
  | BLOCK_NUMBER _ => sizeof_ecma_number_t
  | BLOCK_OBJECT _ => 4
  | BLOCK_EXCEPTION _ _ => sizeof_ecma_extended_primitive_t
  | BLOCK_BIGINT _ _ digits => sizeof_ecma_extended_primitive_t + 4 * zlength digits
  end.

#[export] Instance string_content : BlockContent content := {
  fits c n := content_size c <=? n;
  shrink n c := match c with
                | BLOCK_BUILDER current_size buffer => BLOCK_BUILDER current_size (firstn (Z.to_nat (n - ECMA_ASCII_STRING_HEADER_SIZE)) buffer)
                | _ => c
                end
}.

Notation memory := (gmap Z (Z * option content)).

(** ** Fields *)

Definition ECMA_STRING_GET_CONTAINER (s : ecma_string_t) : Z := Z.land (refs_and_container s) ECMA_STRING_CONTAINER_MASK.
Definition ECMA_STRING_IS_STATIC (s : ecma_string_t) : bool := negb (Z.land (refs_and_container s) ECMA_STATIC_STRING_FLAG =? 0).
Definition ECMA_ASCII_STRING_SET_SIZE (size : Z) : Z := u8 (size - 1).
Definition ECMA_ASCII_STRING_GET_SIZE (size_field : Z) : Z := size_field + 1.

(** The object a string pointer points to *)
Definition string_at (m : memory) (p : Z) : option ecma_string_t :=
  match block_at m p with Some (BLOCK_STRING s) => Some s | _ => None end.

(** [size] bytes from the start of a buffer *)
Definition bytes_at (buffer : list Z) (size : Z) : option (list Z) :=
  if (0 <=? size) && (size <=? zlength buffer) then Some (firstn (Z.to_nat size) buffer) else None.

(** ** Integers *)

(** ecma_uint32_to_utf8_string (ecma-helpers-conversion.c): the digits are
    written from the end of the buffer, which has to have room for them, and
    moved to its start *)
Fixpoint uint32_to_utf8_loop (fuel : nat) (value : Z) (buf : list Z) (room : Z) : option (list Z) :=
  match fuel with
  | O => None
  | S fuel =>
      if room =? 0 then None
      else
        let buf := (value mod 10 + LIT_CHAR_0) :: buf in
        let value := value / 10 in
        if negb (value =? 0) then uint32_to_utf8_loop fuel value buf (room - 1) else Some buf
  end.
Definition ecma_uint32_to_utf8_string (value buffer_size : Z) : option (list Z) := uint32_to_utf8_loop 11 value [] buffer_size.

(** Four rounds at most: size 1, 3, 5, 7, 9 *)
Fixpoint uint32_size_loop (fuel : nat) (uint32_number prev_number next_number size : Z) : Z * Z :=
  match fuel with
  | O => (prev_number, size)
  | S fuel =>
      if (size <? 9) && (next_number <=? uint32_number) then uint32_size_loop fuel uint32_number next_number (u32 (next_number * 100)) (size + 2)
      else (prev_number, size)
  end.
Definition ecma_string_get_uint32_size (uint32_number : Z) : Z :=
  let '(prev_number, size) := uint32_size_loop 5 uint32_number 1 100 1 in
  if u32 (prev_number * 10) <=? uint32_number then size + 1 else size.

(** The loop over all bytes but the tenth *)
Fixpoint array_index_loop (string : list Z) (n : nat) (index : Z) : option (Z * list Z) :=
  match n with
  | O => Some (index, string)
  | S n =>
      match string with
      | [] => None
      | c :: string => if (LIT_CHAR_9 <? c) || (c <? LIT_CHAR_0) then None else array_index_loop string n (u32 (u32 (index * 10) + (c - LIT_CHAR_0)))
      end
  end.
Definition ecma_string_to_array_index (string : list Z) : option Z :=
  match string with
  | [] => None
  | c :: _ =>
      if c =? LIT_CHAR_0 then if zlength string =? 1 then Some 0 else None
      else if ECMA_MAX_CHARS_IN_STRINGIFIED_UINT32 <? zlength string then None
      else
        let string_size := length string in
        match array_index_loop string (if zlength string =? ECMA_MAX_CHARS_IN_STRINGIFIED_UINT32 then (string_size - 1)%nat else string_size) 0 with
        | None => None
        | Some (index, rest) =>
            if zlength string <? ECMA_MAX_CHARS_IN_STRINGIFIED_UINT32 then Some index
            else
              match rest with
              | [] => None
              | d :: _ =>
                  if (LIT_CHAR_9 <? d) || (d <? LIT_CHAR_0) || (UINT32_MAX / 10 <? index) || ((index =? UINT32_MAX / 10) && (LIT_CHAR_0 + 5 <? d)) then None
                  else Some (u32 (u32 (index * 10) + (d - LIT_CHAR_0)))
              end
        end
  end.

Section Access.
Context (T : magic_tables).

Definition ecma_get_magic_string (id : Z) : Z := ECMA_CREATE_DIRECT_STRING ECMA_DIRECT_STRING_MAGIC id.
Definition ecma_get_internal_string (id : Z) : Z := ECMA_CREATE_DIRECT_STRING ECMA_DIRECT_STRING_SPECIAL id.
Definition ecma_get_ecma_string_from_uint32 (uint32_number : Z) : Z := ECMA_CREATE_DIRECT_STRING ECMA_DIRECT_STRING_UINT uint32_number.

Definition ecma_compare_ecma_string_to_magic_id (string_p id : Z) : bool := string_p =? ecma_get_magic_string id.
Definition ecma_string_is_empty (string_p : Z) : bool := ecma_compare_ecma_string_to_magic_id string_p LIT_MAGIC_STRING__EMPTY.

Definition ecma_prop_name_is_symbol (m : memory) (string_p : Z) : option bool :=
  if ECMA_IS_DIRECT_STRING string_p then Some false
  else match string_at m string_p with Some s => Some (ECMA_STRING_GET_CONTAINER s =? ECMA_STRING_CONTAINER_SYMBOL) | None => None end.

(** The magic string of a direct string *)
Definition magic_chars (string_p : Z) : option (list Z) :=
  let id := u32 (ECMA_GET_DIRECT_STRING_VALUE string_p) in
  if LIT_MAGIC_STRING__COUNT T <=? id then lit_get_magic_string_ex_utf8 T (id - LIT_MAGIC_STRING__COUNT T)
  else lit_get_magic_string_utf8 T id.

(** The external magic string of a descriptor, as the functions read it *)
Definition magic_ex_chars (s : ecma_string_t) : option (list Z) :=
  lit_get_magic_string_ex_utf8 T (u32 (LIT_MAGIC_STRING__COUNT T - u s)).

Definition ecma_string_get_chars_fast (m : memory) (string_p : Z) : option (list Z) :=
  if ECMA_IS_DIRECT_STRING string_p && (ECMA_GET_DIRECT_STRING_TYPE string_p =? ECMA_DIRECT_STRING_MAGIC) then magic_chars string_p
  else
    match string_at m string_p with
    | None => None
    | Some s =>
        let container := ECMA_STRING_GET_CONTAINER s in
        if container =? ECMA_STRING_CONTAINER_HEAP_UTF8_STRING then match data s with SHORT size _ buffer => bytes_at buffer size | _ => None end
        else if container =? ECMA_STRING_CONTAINER_LONG_OR_EXTERNAL_STRING then
          match data s with LONG size _ buffer | EXTERNAL size _ buffer _ => bytes_at buffer size | _ => None end
        else if container =? ECMA_STRING_CONTAINER_HEAP_ASCII_STRING then
          match data s with ASCII size_field buffer => bytes_at buffer (ECMA_ASCII_STRING_GET_SIZE size_field) | _ => None end
        else magic_ex_chars s
    end.

(** Flags of ecma_string_get_chars *)
Definition ECMA_STRING_FLAG_EMPTY : Z := 0.
Definition ECMA_STRING_FLAG_IS_ASCII : Z := 1.
Definition ECMA_STRING_FLAG_REHASH_NEEDED : Z := 2.
Definition ECMA_STRING_FLAG_IS_UINT32 : Z := 4.

(** The digits of an integer, in the caller's buffer *)
Definition uint32_chars (uint32_number flags : Z) : option (list Z * Z * Z) :=
  let size := ecma_string_get_uint32_size uint32_number in
  match ecma_uint32_to_utf8_string uint32_number size with
  | Some chars => Some (chars, zlength chars, Z.lor flags (Z.lor ECMA_STRING_FLAG_IS_UINT32 ECMA_STRING_FLAG_REHASH_NEEDED))
  | None => None
  end.

(** External magic strings are measured only when the caller asks for the ASCII check *)
Definition magic_ex_length (chars : option (list Z)) (flags : Z) : option (list Z * Z * Z) :=
  match chars with
  | None => None
  | Some chars =>
      if negb (Z.land flags ECMA_STRING_FLAG_IS_ASCII =? 0) then
        match lit_utf8_string_length chars with Some length => Some (chars, length, flags) | None => None end
      else Some (chars, 0, flags)
  end.

(** Characters, length and flags.  Every caller hands a buffer for the digits of
    an integer over; the branch that allocates one is not described *)
Definition ecma_string_get_chars (m : memory) (string_p flags : Z) : option (list Z * Z * Z) :=
  let result :=
    if ECMA_IS_DIRECT_STRING string_p then
      let flags := Z.lor flags ECMA_STRING_FLAG_REHASH_NEEDED in
      if ECMA_GET_DIRECT_STRING_TYPE string_p =? ECMA_DIRECT_STRING_MAGIC then
        let id := u32 (ECMA_GET_DIRECT_STRING_VALUE string_p) in
        if LIT_MAGIC_STRING__COUNT T <=? id then magic_ex_length (lit_get_magic_string_ex_utf8 T (id - LIT_MAGIC_STRING__COUNT T)) flags
        else match lit_get_magic_string_utf8 T id with Some chars => Some (chars, zlength chars, flags) | None => None end
      else uint32_chars (u32 (ECMA_GET_DIRECT_STRING_VALUE string_p)) flags
    else
      match string_at m string_p with
      | None => None
      | Some s =>
          let container := ECMA_STRING_GET_CONTAINER s in
          if container =? ECMA_STRING_CONTAINER_HEAP_UTF8_STRING then
            match data s with SHORT size length buffer => option_map (fun chars => (chars, length, flags)) (bytes_at buffer size) | _ => None end
          else if container =? ECMA_STRING_CONTAINER_LONG_OR_EXTERNAL_STRING then
            match data s with
            | LONG size length buffer | EXTERNAL size length buffer _ => option_map (fun chars => (chars, length, flags)) (bytes_at buffer size)
            | _ => None
            end
          else if container =? ECMA_STRING_CONTAINER_HEAP_ASCII_STRING then
            match data s with
            | ASCII size_field buffer => option_map (fun chars => (chars, zlength chars, flags)) (bytes_at buffer (ECMA_ASCII_STRING_GET_SIZE size_field))
            | _ => None
            end
          else if container =? ECMA_STRING_CONTAINER_UINT32_IN_DESC then uint32_chars (u s) flags
          else option_map (fun '(chars, length, flags) => (chars, length, Z.lor flags ECMA_STRING_FLAG_REHASH_NEEDED)) (magic_ex_length (magic_ex_chars s) flags)
      end in
  match result with
  | None => None
  | Some (chars, length, flags) =>
      Some (chars, length, if negb (Z.land flags ECMA_STRING_FLAG_IS_ASCII =? 0) && negb (length =? zlength chars) then Z.land flags 254 else flags)
  end.

Definition ecma_string_get_array_index (m : memory) (str_p : Z) : option Z :=
  if ECMA_IS_DIRECT_STRING str_p then
    if ECMA_IS_DIRECT_STRING_WITH_TYPE str_p ECMA_DIRECT_STRING_UINT then Some (u32 (ECMA_GET_DIRECT_STRING_VALUE str_p))
    else Some ECMA_STRING_NOT_ARRAY_INDEX
  else
    match string_at m str_p with
    | None => None
    | Some s => if ECMA_STRING_GET_CONTAINER s =? ECMA_STRING_CONTAINER_UINT32_IN_DESC then Some (u s) else Some ECMA_STRING_NOT_ARRAY_INDEX
    end.

(** ** Sizes and lengths *)

Definition ECMA_STRING_NO_ASCII_SIZE : Z := 4294967295.

Definition ecma_string_get_ascii_size (m : memory) (string_p : Z) : option Z :=
  if ECMA_IS_DIRECT_STRING string_p then
    if ECMA_GET_DIRECT_STRING_TYPE string_p =? ECMA_DIRECT_STRING_MAGIC then
      let id := u32 (ECMA_GET_DIRECT_STRING_VALUE string_p) in
      if LIT_MAGIC_STRING__COUNT T <=? id then Some ECMA_STRING_NO_ASCII_SIZE else lit_get_magic_string_size T id
    else Some (ecma_string_get_uint32_size (u32 (ECMA_GET_DIRECT_STRING_VALUE string_p)))
  else
    match string_at m string_p with
    | None => None
    | Some s =>
        if ECMA_STRING_GET_CONTAINER s =? ECMA_STRING_CONTAINER_UINT32_IN_DESC then Some (ecma_string_get_uint32_size (u s))
        else if ECMA_STRING_GET_CONTAINER s =? ECMA_STRING_CONTAINER_HEAP_ASCII_STRING then
          match data s with ASCII size_field _ => Some (ECMA_ASCII_STRING_GET_SIZE size_field) | _ => None end
        else Some ECMA_STRING_NO_ASCII_SIZE
    end.

(** The four functions differ in what they do with characters that are not known
    to be ASCII.  [stored] takes the fields size and length and the characters *)
Definition measure (m : memory) (string_p : Z) (stored : Z -> Z -> option (list Z) -> option Z) (measured : list Z -> option Z) : option Z :=
  match ecma_string_get_ascii_size m string_p with
  | None => None
  | Some length =>
      if negb (length =? ECMA_STRING_NO_ASCII_SIZE) then Some length
      else if ECMA_IS_DIRECT_STRING string_p then
        match lit_get_magic_string_ex_utf8 T (u32 (u32 (ECMA_GET_DIRECT_STRING_VALUE string_p) - LIT_MAGIC_STRING__COUNT T)) with
        | Some chars => measured chars
        | None => None
        end
      else
        match string_at m string_p with
        | None => None
        | Some s =>
            let container := ECMA_STRING_GET_CONTAINER s in
            if container =? ECMA_STRING_CONTAINER_HEAP_UTF8_STRING then
              match data s with SHORT size length buffer => stored size length (bytes_at buffer size) | _ => None end
            else if container =? ECMA_STRING_CONTAINER_LONG_OR_EXTERNAL_STRING then
              match data s with LONG size length buffer | EXTERNAL size length buffer _ => stored size length (bytes_at buffer size) | _ => None end
            else match magic_ex_chars s with Some chars => measured chars | None => None end
        end
  end.

(** Only characters that are not ASCII are read *)
Definition unless_ascii (f : list Z -> option Z) (size length : Z) (chars : option (list Z)) : option Z :=
  if size =? length then Some size else match chars with Some chars => f chars | None => None end.

Definition ecma_string_get_length (m : memory) (string_p : Z) : option Z :=
  measure m string_p (fun _ length _ => Some length) lit_utf8_string_length.
Definition ecma_string_get_utf8_length (m : memory) (string_p : Z) : option Z :=
  measure m string_p (unless_ascii lit_get_utf8_length_of_cesu8_string) lit_get_utf8_length_of_cesu8_string.
Definition ecma_string_get_size (m : memory) (string_p : Z) : option Z :=
  measure m string_p (fun size _ _ => Some size) (fun chars => Some (zlength chars)).
Definition ecma_string_get_utf8_size (m : memory) (string_p : Z) : option Z :=
  measure m string_p (unless_ascii lit_get_utf8_size_of_cesu8_string) lit_get_utf8_size_of_cesu8_string.

(** ** Characters and copies *)

Definition nth_byte (chars : list Z) (index : Z) : option Z := at_index chars index.

(** Character [index] of characters with the fields [size] and [length] *)
Definition code_unit_of (size length : Z) (chars : option (list Z)) (index : Z) : option Z :=
  match chars with
  | None => None
  | Some chars => if size =? length then nth_byte chars index else lit_utf8_string_code_unit_at chars (Z.to_nat index)
  end.

Definition ecma_external_string_get_char_at_pos (id index : Z) : option Z :=
  match lit_get_magic_string_ex_utf8 T (u32 (id - LIT_MAGIC_STRING__COUNT T)) with
  | None => None
  | Some chars => match lit_utf8_string_length chars with Some length => code_unit_of (zlength chars) length (Some chars) index | None => None end
  end.

Definition uint32_char_at (uint32_number index : Z) : option Z :=
  match ecma_uint32_to_utf8_string uint32_number ECMA_MAX_CHARS_IN_STRINGIFIED_UINT32 with Some digits => nth_byte digits index | None => None end.

Definition ecma_string_get_char_at_pos (m : memory) (string_p index : Z) : option Z :=
  if ECMA_IS_DIRECT_STRING string_p then
    if ECMA_GET_DIRECT_STRING_TYPE string_p =? ECMA_DIRECT_STRING_MAGIC then
      let id := u32 (ECMA_GET_DIRECT_STRING_VALUE string_p) in
      if id <? LIT_MAGIC_STRING__COUNT T then match lit_get_magic_string_utf8 T id with Some chars => nth_byte chars index | None => None end
      else ecma_external_string_get_char_at_pos id index
    else uint32_char_at (u32 (ECMA_GET_DIRECT_STRING_VALUE string_p)) index
  else
    match string_at m string_p with
    | None => None
    | Some s =>
        let container := ECMA_STRING_GET_CONTAINER s in
        if container =? ECMA_STRING_CONTAINER_HEAP_UTF8_STRING then
          match data s with SHORT size length buffer => code_unit_of size length (bytes_at buffer size) index | _ => None end
        else if container =? ECMA_STRING_CONTAINER_LONG_OR_EXTERNAL_STRING then
          match data s with LONG size length buffer | EXTERNAL size length buffer _ => code_unit_of size length (bytes_at buffer size) index | _ => None end
        else if container =? ECMA_STRING_CONTAINER_HEAP_ASCII_STRING then match data s with ASCII _ buffer => nth_byte buffer index | _ => None end
        else if container =? ECMA_STRING_CONTAINER_UINT32_IN_DESC then uint32_char_at (u s) index
        else ecma_external_string_get_char_at_pos (u s) index
    end.

Definition ecma_get_string_magic (string_p : Z) : Z :=
  if ECMA_IS_DIRECT_STRING_WITH_TYPE string_p ECMA_DIRECT_STRING_MAGIC then
    let id := u32 (ECMA_GET_DIRECT_STRING_VALUE string_p) in
    if id <? LIT_MAGIC_STRING__COUNT T then id else LIT_MAGIC_STRING__COUNT T
  else LIT_MAGIC_STRING__COUNT T.

Definition ecma_string_hash (m : memory) (string_p : Z) : option Z :=
  if ECMA_IS_DIRECT_STRING string_p then Some (u32 (ECMA_GET_DIRECT_STRING_VALUE string_p))
  else option_map u (string_at m string_p).

(** The digits that fit into the buffer *)
Definition ecma_uint32_to_buffer (num buffer_size : Z) : option (list Z) :=
  match ecma_uint32_to_utf8_string num ECMA_MAX_CHARS_IN_STRINGIFIED_UINT32 with
  | Some digits => Some (firstn (Z.to_nat (Z.min buffer_size (zlength digits))) digits)
  | None => None
  end.

(** Moves a cut back to the start of the character it is in *)
Fixpoint whole_characters (chars : list Z) (copy_size : nat) : option Z :=
  match nth_error chars copy_size with
  | None => None
  | Some c => if is_extra_byte c then match copy_size with S n => whole_characters chars n | O => None end else Some (Z.of_nat copy_size)
  end.

Inductive jjs_encoding_t := JJS_ENCODING_NONE | JJS_ENCODING_ASCII | JJS_ENCODING_CESU8 | JJS_ENCODING_UTF8 | JJS_ENCODING_UTF16.

(** The bytes that are written to the buffer, and their number as it is returned *)
Definition ecma_string_copy_to_buffer (m : memory) (string_p buffer_size : Z) (encoding : jjs_encoding_t) : option (list Z * Z) :=
  let copied (bytes : list Z) := Some (bytes, zlength bytes) in
  let integer n := match ecma_uint32_to_buffer n buffer_size with Some bytes => copied bytes | None => None end in
  let characters :=
    match ecma_string_get_chars_fast m string_p with
    | None => None
    | Some chars =>
        let string_size := zlength chars in
        match encoding with
        | JJS_ENCODING_CESU8 =>
            let copy_size := Z.min string_size buffer_size in
            match (if copy_size <? string_size then whole_characters chars (Z.to_nat copy_size) else Some copy_size) with
            | Some copy_size => copied (firstn (Z.to_nat copy_size) chars)
            | None => None
            end
        | JJS_ENCODING_UTF8 =>
            match ecma_string_get_length m string_p with
            | None => None
            | Some length =>
                if string_size =? length then copied (firstn (Z.to_nat (Z.min string_size buffer_size)) chars)
                else lit_convert_cesu8_string_to_utf8_string chars buffer_size
            end
        | _ => copied []
        end
    end in
  if ECMA_IS_DIRECT_STRING string_p then
    if ECMA_IS_DIRECT_STRING_WITH_TYPE string_p ECMA_DIRECT_STRING_UINT then integer (u32 (ECMA_GET_DIRECT_STRING_VALUE string_p))
    else characters
  else
    match string_at m string_p with
    | None => None
    | Some s => if ECMA_STRING_GET_CONTAINER s =? ECMA_STRING_CONTAINER_UINT32_IN_DESC then integer (u s) else characters
    end.

(** The caller's buffer has the size of the string *)
Definition ecma_string_to_cesu8_bytes (m : memory) (string_desc_p buffer_size : Z) : option (list Z) :=
  option_map fst (ecma_string_copy_to_buffer m string_desc_p buffer_size JJS_ENCODING_CESU8).

(** ** Comparison *)

(** Size, length and characters; NULL is the inner [None] *)
Definition ecma_compare_get_string_chars (s : ecma_string_t) : option (option (Z * Z * list Z)) :=
  let container := ECMA_STRING_GET_CONTAINER s in
  if container =? ECMA_STRING_CONTAINER_HEAP_UTF8_STRING then
    match data s with SHORT size length buffer => Some (Some (size, length, buffer)) | _ => None end
  else if container =? ECMA_STRING_CONTAINER_LONG_OR_EXTERNAL_STRING then
    match data s with LONG size length buffer | EXTERNAL size length buffer _ => Some (Some (size, length, buffer)) | _ => None end
  else if container =? ECMA_STRING_CONTAINER_HEAP_ASCII_STRING then
    match data s with
    | ASCII size_field buffer => let size := ECMA_ASCII_STRING_GET_SIZE size_field in Some (Some (size, size, buffer))
    | _ => None
    end
  else Some None.

Definition ecma_compare_ecma_strings_longpath (s1 s2 : ecma_string_t) : option bool :=
  match ecma_compare_get_string_chars s1, ecma_compare_get_string_chars s2 with
  | Some (Some (size1, length1, chars1)), Some (Some (size2, length2, chars2)) =>
      if negb (size1 =? size2) || negb (length1 =? length2) then Some false
      else
        match chars1, chars2 with
        | c1 :: _, c2 :: _ => if c1 =? c2 then option_map (Z.eqb 0) (memcmp chars1 chars2 (Z.to_nat size1)) else Some false
        | _, _ => None
        end
  | Some _, Some _ => Some false
  | _, _ => None
  end.

Definition ecma_compare_ecma_non_direct_strings (m : memory) (string1_p string2_p : Z) : option bool :=
  if string1_p =? string2_p then Some true
  else
    match string_at m string1_p, string_at m string2_p with
    | Some s1, Some s2 =>
        if negb (u s1 =? u s2) then Some false
        else if ECMA_STRING_GET_CONTAINER s1 =? ECMA_STRING_CONTAINER_UINT32_IN_DESC then
          Some (ECMA_STRING_GET_CONTAINER s2 =? ECMA_STRING_CONTAINER_UINT32_IN_DESC)
        else ecma_compare_ecma_strings_longpath s1 s2
    | _, _ => None
    end.

Definition ecma_compare_ecma_strings (m : memory) (string1_p string2_p : Z) : option bool :=
  if string1_p =? string2_p then Some true
  else if ECMA_IS_DIRECT_STRING (Z.lor string1_p string2_p) then Some false
  else
    match string_at m string1_p, string_at m string2_p with
    | Some s1, Some s2 =>
        if negb (u s1 =? u s2) then Some false
        else if ECMA_STRING_GET_CONTAINER s1 =? ECMA_STRING_CONTAINER_UINT32_IN_DESC then
          Some (ECMA_STRING_GET_CONTAINER s2 =? ECMA_STRING_CONTAINER_UINT32_IN_DESC)
        else ecma_compare_ecma_strings_longpath s1 s2
    | _, _ => None
    end.

(** Characters of either kind of string, integers in a local buffer *)
Definition relational_chars (m : memory) (string_p : Z) : option (list Z) :=
  if ECMA_IS_DIRECT_STRING string_p then
    if negb (ECMA_GET_DIRECT_STRING_TYPE string_p =? ECMA_DIRECT_STRING_UINT) then ecma_string_get_chars_fast m string_p
    else ecma_uint32_to_utf8_string (u32 (ECMA_GET_DIRECT_STRING_VALUE string_p)) ECMA_MAX_CHARS_IN_STRINGIFIED_UINT32
  else
    match string_at m string_p with
    | None => None
    | Some s =>
        if negb (ECMA_STRING_GET_CONTAINER s =? ECMA_STRING_CONTAINER_UINT32_IN_DESC) then ecma_string_get_chars_fast m string_p
        else ecma_uint32_to_utf8_string (u s) ECMA_MAX_CHARS_IN_STRINGIFIED_UINT32
    end.

Definition ecma_compare_ecma_strings_relational (m : memory) (string1_p string2_p : Z) : option bool :=
  match ecma_compare_ecma_strings m string1_p string2_p with
  | None => None
  | Some true => Some false
  | Some false =>
      match relational_chars m string1_p, relational_chars m string2_p with
      | Some chars1, Some chars2 => lit_compare_utf8_strings_relational chars1 chars2
      | _, _ => None
      end
  end.

(** The position after the character at [index] *)
Definition ecma_op_advance_string_index (m : memory) (str_p index : Z) (is_unicode : bool) : option Z :=
  let next_index := u64 (index + 1) in
  if negb is_unicode then Some next_index
  else
    match ecma_string_get_length m str_p with
    | None => None
    | Some str_len =>
        if str_len <=? next_index then Some next_index
        else
          match ecma_string_get_char_at_pos m str_p (u32 index) with
          | None => None
          | Some first =>
              if negb (lit_is_code_point_utf16_high_surrogate first) then Some next_index
              else
                match ecma_string_get_char_at_pos m str_p (u32 next_index) with
                | None => None
                | Some second => if negb (lit_is_code_point_utf16_low_surrogate second) then Some next_index else Some (u64 (next_index + 1))
                end
          end
    end.
End Access.
