(* ===== verification/Decimal.v ===== *)
(** * Integers as decimal digits

    The reference for the integers in strings: a digit sequence without leading
    zeros and the number it denotes; and the functions of
    ecma-helpers-string.c and ecma-helpers-conversion.c that print, measure and
    read 32-bit integers. *)
From Stdlib Require Import ZArith Lia Bool List.
From S2P Require Import Prelude LitChars StringData.
Import ListNotations.
#[local] Open Scope Z_scope.

Definition is_digit (c : Z) : Prop := 48 <= c <= 57.
Definition digits_value (s : list Z) : Z := fold_left (fun v c => v * 10 + (c - 48)) s 0.

(** [s] is the decimal notation of [n] *)
Definition is_decimal (s : list Z) (n : Z) : Prop :=
  Forall is_digit s /\ digits_value s = n /\ (s = [48] \/ exists c rest, s = c :: rest /\ c <> 48).

Lemma decimal_snoc s c : digits_value (s ++ [c]) = digits_value s * 10 + (c - 48).
Proof. unfold digits_value. now rewrite fold_left_app. Qed.

Lemma digits_from s : forall v, fold_left (fun v c => v * 10 + (c - 48)) s v = v * 10 ^ zlength s + digits_value s.
Proof.
  unfold digits_value. induction s as [| c s IH]; intros v; [rewrite (@zlength_nil Z); cbn; lia |]. cbn [fold_left]. rewrite IH, (IH (0 * 10 + (c - 48))), zlength_cons.
  rewrite Z.pow_add_r by (pose proof (zlength_nonneg s); lia). ring.
Qed.

Lemma digits_value_cons c s : digits_value (c :: s) = (c - 48) * 10 ^ zlength s + digits_value s.
Proof. unfold digits_value at 1. cbn [fold_left]. rewrite digits_from. lia. Qed.

Lemma digits_bound s : Forall is_digit s -> 0 <= digits_value s < 10 ^ zlength s.
Proof.
  induction 1 as [| c s Hc _ IH]; [rewrite (@zlength_nil Z); cbn; lia |]. rewrite digits_value_cons, zlength_cons, Z.pow_add_r by (pose proof (zlength_nonneg s); lia).
  unfold is_digit in Hc. change (10 ^ 1) with 10. nia.
Qed.

(** The number of digits *)
Lemma decimal_length s n : is_decimal s n -> 0 <= n < 10 ^ zlength s /\ (1 < zlength s -> 10 ^ (zlength s - 1) <= n) /\ 1 <= zlength s.
Proof.
  intros (Hd & <- & Hs). pose proof (digits_bound s Hd). splits; try lia.
  - intros Hl. destruct Hs as [-> | (c & rest & -> & Hc)]; [unfold zlength in Hl; cbn in Hl; lia |]. rewrite digits_value_cons, zlength_cons in *.
    replace (1 + zlength rest - 1) with (zlength rest) by lia. inversion Hd as [| ? ? Hc' Hr]; subst. pose proof (digits_bound rest Hr). unfold is_digit in Hc'. nia.
  - destruct Hs as [-> | (c & rest & -> & _)]; [now vm_compute |]. rewrite zlength_cons. pose proof (zlength_nonneg rest). lia.
Qed.

Lemma same_length s n k : is_decimal s n -> 1 <= k -> n < 10 ^ k -> (1 < k -> 10 ^ (k - 1) <= n) -> zlength s = k.
Proof.
  intros Hs Hk Hlt Hge. destruct (decimal_length s n Hs) as (H1 & H2 & H3).
  destruct (Z.lt_trichotomy (zlength s) k) as [H | [H | H]]; [| exact H |]; exfalso.
  - specialize (Hge ltac:(lia)). assert (10 ^ zlength s <= 10 ^ (k - 1)) by (apply Z.pow_le_mono_r; lia). lia.
  - specialize (H2 ltac:(lia)). assert (10 ^ k <= 10 ^ (zlength s - 1)) by (apply Z.pow_le_mono_r; lia). lia.
Qed.

Lemma digits_inj s : forall t, Forall is_digit s -> Forall is_digit t -> zlength s = zlength t -> digits_value s = digits_value t -> s = t.
Proof.
  induction s as [| c s IH]; intros [| d t] Hs Ht Hl Hv; rewrite ?zlength_cons in Hl.
  - reflexivity.
  - pose proof (zlength_nonneg t). unfold zlength in Hl at 1. cbn in Hl. lia.
  - pose proof (zlength_nonneg s). unfold zlength in Hl at 2. cbn in Hl. lia.
  - inversion Hs; inversion Ht; subst. rewrite !digits_value_cons in Hv. assert (El : zlength s = zlength t) by lia. rewrite El in Hv.
    pose proof (digits_bound s ltac:(assumption)) as Bs. pose proof (digits_bound t ltac:(assumption)) as Bt. rewrite El in Bs.
    assert (c = d) by nia. subst d. f_equal. apply IH; try assumption. lia.
Qed.

Lemma decimal_unique s t n : is_decimal s n -> is_decimal t n -> s = t.
Proof.
  intros Hs Ht. pose proof (decimal_length t n Ht) as (H1 & H2 & H3). pose proof (same_length s n (zlength t) Hs H3 ltac:(lia) H2).
  destruct Hs as (Ds & <- & _), Ht as (Dt & Hv & _). now apply digits_inj.
Qed.

Lemma decimal_value s n m : is_decimal s n -> is_decimal s m -> n = m.
Proof. intros (_ & <- & _) (_ & <- & _). reflexivity. Qed.

(** ** Printing *)

Lemma uint32_to_utf8_loop_spec fuel : forall value, (0 < fuel)%nat -> 0 <= value < 10 ^ Z.of_nat fuel ->
  exists d, is_decimal d value /\ forall buf room, zlength d <= room -> uint32_to_utf8_loop fuel value buf room = Some (d ++ buf).
Proof.
  induction fuel as [| fuel IH]; intros value Hf Hv; [lia |]. cbn [uint32_to_utf8_loop]. unfold LIT_CHAR_0.
  pose proof (Z.div_mod value 10 ltac:(lia)) as E. pose proof (Z.mod_pos_bound value 10 ltac:(lia)) as Hm.
  destruct (Z.eqb_spec (value / 10) 0) as [H0 | H0].
  - exists [value mod 10 + 48]. split.
    + unfold is_decimal. splits; [constructor; [unfold is_digit; lia | constructor] | unfold digits_value; cbn [fold_left]; lia |].
      destruct (Z.eq_dec (value mod 10) 0) as [-> |]; [now left |]. right. exists (value mod 10 + 48), []. split; [reflexivity | lia].
    + intros buf room Hr. unfold zlength in Hr. cbn in Hr. destruct (Z.eqb_spec room 0); [lia |]. now cbn.
  - assert (0 < value / 10) by (pose proof (Z.div_pos value 10); lia).
    assert (Hlt : value / 10 < 10 ^ Z.of_nat fuel).
    { rewrite Nat2Z.inj_succ, Z.pow_succ_r in Hv by lia. apply Z.div_lt_upper_bound; lia. }
    destruct fuel as [| fuel]; [cbn in Hlt; lia |]. destruct (IH (value / 10) ltac:(lia) ltac:(lia)) as (d & (Hd & Hval & Hlead) & Hloop). exists (d ++ [value mod 10 + 48]). split.
    + unfold is_decimal. splits.
      * apply Forall_app. split; [exact Hd | constructor; [unfold is_digit; lia | constructor]].
      * rewrite decimal_snoc. lia.
      * right. destruct Hlead as [-> | (c & rest & -> & Hc)]; [unfold digits_value in Hval; cbn in Hval; lia |]. exists c, (rest ++ [value mod 10 + 48]). now split.
    + intros buf room Hr. rewrite zlength_app, zlength_cons, (@zlength_nil Z) in Hr. pose proof (zlength_nonneg d).
      destruct (Z.eqb_spec room 0); [lia |]. cbv zeta. cbn [negb]. rewrite Hloop by lia. now rewrite <- app_assoc.
Qed.

Lemma uint32_to_utf8_spec n : is_u32 n ->
  exists d, is_decimal d n /\ zlength d <= 10 /\ forall size, zlength d <= size -> ecma_uint32_to_utf8_string n size = Some d.
Proof.
  intros Hn. destruct (uint32_to_utf8_loop_spec 11 n) as (d & Hd & Hl); [lia | unfold is_u32 in Hn; cbn; lia |].
  exists d. splits; [exact Hd | | intros size Hs; unfold ecma_uint32_to_utf8_string; rewrite Hl by exact Hs; now rewrite app_nil_r].
  destruct (decimal_length d n Hd) as (_ & H2 & _). destruct (Z.le_gt_cases (zlength d) 10) as [| H]; [assumption | exfalso].
  specialize (H2 ltac:(lia)). assert (10 ^ 10 <= 10 ^ (zlength d - 1)) by (apply Z.pow_le_mono_r; lia). unfold is_u32 in Hn. lia.
Qed.

(** The decimal notation of an integer *)
Definition decimal (n : Z) : list Z := match ecma_uint32_to_utf8_string n 10 with Some d => d | None => [] end.

Lemma decimal_spec n : is_u32 n -> is_decimal (decimal n) n /\ zlength (decimal n) <= 10 /\
  forall size, zlength (decimal n) <= size -> ecma_uint32_to_utf8_string n size = Some (decimal n).
Proof. intros Hn. destruct (uint32_to_utf8_spec n Hn) as (d & Hd & Hl & He). unfold decimal. rewrite He by exact Hl. now splits. Qed.

Lemma decimal_inj a b : is_u32 a -> is_u32 b -> decimal a = decimal b -> a = b.
Proof. intros Ha Hb E. apply (decimal_value (decimal a)); [now apply decimal_spec | rewrite E; now apply decimal_spec]. Qed.

(** ** Measuring *)

Lemma uint32_size_spec n : is_u32 n -> ecma_string_get_uint32_size n = zlength (decimal n).
Proof.
  intros Hn. destruct (decimal_spec n Hn) as (Hd & _ & _). symmetry. unfold is_u32 in Hn.
  unfold ecma_string_get_uint32_size. cbn [uint32_size_loop].
  change (u32 (100 * 100)) with 10000. change (u32 (10000 * 100)) with 1000000. change (u32 (1000000 * 100)) with 100000000.
  change (1 <? 9) with true. change (1 + 2 <? 9) with true. change (1 + 2 + 2 <? 9) with true. change (1 + 2 + 2 + 2 <? 9) with true.
  change (1 + 2 + 2 + 2 + 2 <? 9) with false. cbn [andb].
  destruct (Z.leb_spec 100 n); [destruct (Z.leb_spec 10000 n); [destruct (Z.leb_spec 1000000 n); [destruct (Z.leb_spec 100000000 n) |] |] |];
    match goal with |- context [u32 ?e] => let v := eval vm_compute in (u32 e) in change (u32 e) with v end;
    match goal with |- context [?a <=? n] => destruct (Z.leb_spec a n) end;
    (apply (same_length _ n); [exact Hd | lia | cbn; lia | intros ?; cbn; lia]).
Qed.

(** ** Reading *)

Lemma array_index_loop_spec string : forall n index, (n <= length string)%nat -> 0 <= index -> (index + 1) * 10 ^ Z.of_nat n <= 10 ^ 9 ->
  array_index_loop string n index
    = if forallb (fun c => (48 <=? c) && (c <=? 57)) (firstn n string)
      then Some (index * 10 ^ Z.of_nat n + digits_value (firstn n string), skipn n string) else None.
Proof.
  induction string as [| c string IH]; intros n index Hn Hi Hb; destruct n as [| n]; cbn [length] in Hn; try lia.
  - cbn. f_equal. f_equal. lia.
  - cbn. f_equal. f_equal. lia.
  - cbn [array_index_loop firstn skipn forallb]. unfold LIT_CHAR_9, LIT_CHAR_0.
    destruct (Z.ltb_spec 57 c) as [H1 | H1], (Z.ltb_spec c 48) as [H2 | H2], (Z.leb_spec 48 c) as [H3 | H3], (Z.leb_spec c 57) as [H4 | H4];
      try lia; cbn [orb andb]; try reflexivity. rewrite Nat2Z.inj_succ, Z.pow_succ_r in Hb by lia.
    assert (1 <= 10 ^ Z.of_nat n) by (pose proof (Z.pow_pos_nonneg 10 (Z.of_nat n)); lia).
    rewrite (u32_small (index * 10)), u32_small by (unfold is_u32; nia). rewrite IH by (lia || nia).
    destruct (forallb _ _); [| reflexivity]. rewrite digits_value_cons, Nat2Z.inj_succ, Z.pow_succ_r by lia.
    assert (zlength (firstn n string) = Z.of_nat n) as -> by (unfold zlength; rewrite length_firstn; lia). f_equal. f_equal. ring.
Qed.

Lemma all_digits s : forallb (fun c => (48 <=? c) && (c <=? 57)) s = true <-> Forall is_digit s.
Proof.
  rewrite forallb_forall, Forall_forall. split; intros H c Hc; specialize (H c Hc); unfold is_digit in *; [zbool; lia |].
  apply andb_true_intro. split; apply Z.leb_le; lia.
Qed.

Lemma all_digits_value s : Forall is_digit s -> zlength s <= 10 -> 0 <= digits_value s < 10 ^ 10.
Proof.
  intros Hs Hl. pose proof (digits_bound s Hs). assert (10 ^ zlength s <= 10 ^ 10) by (apply Z.pow_le_mono_r; lia). lia.
Qed.

(** Of the strings that begin with a digit, the decimal notations of 32-bit
    integers are accepted *)
Lemma array_index_spec string n : (match string with c :: _ => is_digit c | [] => False end) ->
  ecma_string_to_array_index string = Some n <-> is_decimal string n /\ is_u32 n.
Proof.
  destruct string as [| c rest] eqn:Es; [easy |]. intros Hc. rewrite <- Es. unfold ecma_string_to_array_index, is_digit, LIT_CHAR_0, LIT_CHAR_9, UINT32_MAX, ECMA_MAX_CHARS_IN_STRINGIFIED_UINT32 in *.
  rewrite Es at 1. destruct (Z.eqb_spec c 48) as [-> | Hn0].
  - subst string. rewrite zlength_cons. pose proof (zlength_nonneg rest). destruct (Z.eqb_spec (1 + zlength rest) 1) as [E | E].
    + assert (rest = []) as -> by (destruct rest; [reflexivity | unfold zlength in E; cbn in E; lia]). split.
      * intros [= <-]. split; [| unfold is_u32; lia]. unfold is_decimal. splits; [constructor; [unfold is_digit; lia | constructor] | reflexivity | now left].
      * intros [(_ & <- & _) _]. reflexivity.
    + split; [discriminate |]. intros [(_ & _ & [[= ->] | (d & t & [= <- _] & Hd)]) _]; [unfold zlength in E; cbn in E; lia | lia].
  - assert (Hlead : string = [48] \/ exists c rest, string = c :: rest /\ c <> 48) by (right; now exists c, rest).
    destruct (Z.ltb_spec 10 (zlength string)) as [Hlong | Hshort].
    { split; [discriminate |]. intros [Hd Hn]. destruct (decimal_length _ _ Hd) as (_ & H2 & _). specialize (H2 ltac:(lia)).
      assert (10 ^ 10 <= 10 ^ (zlength string - 1)) by (apply Z.pow_le_mono_r; lia). unfold is_u32 in Hn. lia. }
    assert (Hpos : (1 <= length string)%nat) by (rewrite Es; cbn; lia). unfold zlength in *.
    destruct (Z.eqb_spec (Z.of_nat (length string)) 10) as [H10 | H10].
    + rewrite array_index_loop_spec; [| lia | lia | replace (length string - 1)%nat with 9%nat by lia; cbn; lia].
      destruct (Z.ltb_spec (Z.of_nat (length string)) 10); [lia |]. replace (length string - 1)%nat with 9%nat by lia.
      destruct (exists_last (l := string)) as (init & d & Ed); [congruence |].
      assert (Hi : length init = 9%nat) by (apply (f_equal (@length Z)) in Ed; rewrite length_app in Ed; cbn in Ed; lia).
      rewrite Ed, firstn_app, skipn_app, Hi, firstn_all2, skipn_all2, Nat.sub_diag by lia. cbn [firstn skipn]. rewrite app_nil_r. cbn [app].
      assert (Hdec : forall n, is_decimal (init ++ [d]) n <-> Forall is_digit init /\ is_digit d /\ n = digits_value init * 10 + (d - 48)).
      { intros m. unfold is_decimal. rewrite Forall_app, decimal_snoc, <- Ed. split.
        - intros ([? Hd] & <- & _). inversion Hd; subst. now splits.
        - intros (? & ? & ->). splits; try assumption; [now constructor | reflexivity]. }
      rewrite Hdec. destruct (forallb _ init) eqn:Ei.
      * apply all_digits in Ei. pose proof (digits_bound init Ei) as Hb. unfold zlength in Hb. rewrite Hi in Hb. change (10 ^ Z.of_nat 9) with 1000000000 in *.
        change (4294967295 / 10) with 429496729. change (48 + 5) with 53. cbn [Z.mul]. set (v := digits_value init) in *. rewrite Z.add_0_l.
        destruct (Z.ltb_spec 57 d) as [H1 | H1]; cbn [orb]; [split; [discriminate | unfold is_digit; lia] |].
        destruct (Z.ltb_spec d 48) as [H2 | H2]; cbn [orb]; [split; [discriminate | unfold is_digit; lia] |].
        destruct (Z.ltb_spec 429496729 v) as [H3 | H3]; cbn [orb]; [split; [discriminate | unfold is_u32; lia] |].
        destruct (Z.eqb_spec v 429496729) as [H4 | H4], (Z.ltb_spec 53 d) as [H5 | H5]; cbn [andb];
          try (split; [discriminate | unfold is_u32; lia]);
          (rewrite (u32_small (v * 10)), u32_small by (unfold is_u32; lia); unfold is_digit, is_u32; split; [intros [= <-]; splits; (assumption || lia) | intros ((_ & _ & ->) & _); reflexivity]).
      * split; [discriminate |]. intros ((Hi' & _) & _). apply all_digits in Hi'. congruence.
    + rewrite array_index_loop_spec; [| lia | lia |].
      2:{ assert (10 ^ Z.of_nat (length string) <= 10 ^ 9) by (apply Z.pow_le_mono_r; lia). lia. }
      destruct (Z.ltb_spec (Z.of_nat (length string)) 10); [| lia]. rewrite firstn_all. destruct (forallb _ string) eqn:Ei.
      * apply all_digits in Ei. pose proof (digits_bound string Ei) as Hb. unfold zlength in Hb.
        assert (10 ^ Z.of_nat (length string) <= 10 ^ 9) by (apply Z.pow_le_mono_r; lia). cbn [Z.mul]. rewrite Z.add_0_l. split.
        -- intros [= <-]. split; [now splits | unfold is_u32; lia].
        -- intros [(_ & -> & _) _]. reflexivity.
      * split; [discriminate |]. intros [(Hi' & _) _]. apply all_digits in Hi'. congruence.
Qed.

Lemma decimal_head n : is_u32 n -> exists c rest, decimal n = c :: rest /\ is_digit c.
Proof.
  intros Hn. destruct (decimal_spec n Hn) as ((Hd & _ & Hs) & _ & _). destruct Hs as [-> | (c & rest & E & _)]; [exists 48, []; split; [reflexivity | unfold is_digit; lia] |].
  rewrite E in *. exists c, rest. split; [reflexivity |]. now inversion Hd.
Qed.

Lemma array_index_decimal n : is_u32 n -> ecma_string_to_array_index (decimal n) = Some n.
Proof.
  intros Hn. destruct (decimal_head n Hn) as (c & rest & E & Hc). apply array_index_spec; [now rewrite E |]. split; [now apply decimal_spec | exact Hn].
Qed.
