(* ===== verification/StringRepr.v ===== *)
(** * What strings denote

    Every string has exactly one representation: the direct string of a magic
    string, of an integer or of a string of the embedder, a descriptor with an
    integer, or a block with the characters.  [string_is m p s] says that the
    word [p] is the string with the characters [s]; under it the functions of
    StringData compute what their names promise, whatever the representation
    is. *)
From Stdlib Require Import ZArith Lia Bool List.
From stdpp Require Import base gmap list.
From S2P Require Import Prelude LitChars LitStrings JmemHeap JmemPointers Values BlockHeap MagicStrings StringData Decimal.
Import ListNotations.
#[local] Open Scope Z_scope.

(** ** Characters *)

Definition is_text (s : list Z) : Prop := exists units, Forall is_u16 units /\ s = cesu8_encode units.
Definition is_ascii (c : Z) : Prop := 0 <= c < 128.

Lemma ascii_unit c : is_ascii c -> lit_code_unit_to_utf8 c = [c].
Proof.
  unfold is_ascii. intros Hc. rewrite code_unit_bytes by (unfold is_u16; lia). unfold unit_bytes. destruct (Z.ltb_spec c 128); [reflexivity | lia].
Qed.

Lemma ascii_encode s : Forall is_ascii s -> Forall is_u16 s /\ cesu8_encode s = s.
Proof.
  induction 1 as [| c s Hc _ [IH1 IH2]]; [now split |]. split; [constructor; [unfold is_ascii in Hc; unfold is_u16; lia | exact IH1] |].
  rewrite cesu8_encode_cons, ascii_unit, IH2 by exact Hc. reflexivity.
Qed.

Lemma encode_size_ge units : zlength units <= zlength (cesu8_encode units).
Proof. unfold zlength. pose proof (encode_length_ge units). lia. Qed.

(** Only ASCII characters take one byte each *)
Lemma encode_same_length units : Forall is_u16 units -> zlength (cesu8_encode units) = zlength units -> cesu8_encode units = units /\ Forall is_ascii units.
Proof.
  induction 1 as [| c units Hc Hu IH]; [now split |]. rewrite cesu8_encode_cons, zlength_app, zlength_cons. intros E.
  pose proof (encode_size_ge units). pose proof (code_unit_length c). destruct IH as [IH1 IH2]; [lia |].
  assert (Hone : zlength (lit_code_unit_to_utf8 c) = 1) by lia. rewrite code_unit_bytes in * by exact Hc. unfold unit_bytes in *. unfold is_u16 in Hc.
  destruct (Z.ltb_spec c 128); [| destruct (Z.ltb_spec c 2048); discriminate]. rewrite IH1. split; [reflexivity |]. constructor; [unfold is_ascii; lia | exact IH2].
Qed.

Lemma text_length units : Forall is_u16 units -> lit_utf8_string_length (cesu8_encode units) = Some (zlength units).
Proof. intros H. unfold lit_utf8_string_length. now rewrite string_length_encode by (exact H || apply encode_length_ge). Qed.

Lemma ascii_length s : Forall is_ascii s -> lit_utf8_string_length s = Some (zlength s).
Proof. intros H. destruct (ascii_encode s H) as [H1 H2]. rewrite <- H2 at 1. now apply text_length. Qed.

Lemma encode_inj a : Forall is_u16 a -> forall b, Forall is_u16 b -> cesu8_encode a = cesu8_encode b -> a = b.
Proof.
  induction 1 as [| u a Hu Ha IH]; intros b Hb E; destruct Hb as [| v b Hv Hb]; rewrite ?cesu8_encode_cons in E.
  - reflexivity.
  - symmetry in E. now apply code_unit_nonempty in E.
  - now apply code_unit_nonempty in E.
  - pose proof (read_code_unit u (cesu8_encode a) Hu) as Eu. rewrite E, read_code_unit in Eu by exact Hv.
    assert (u = v) as <- by congruence. f_equal. apply IH; [exact Hb |]. now apply app_inv_head in E.
Qed.

Lemma text_ascii s : Forall is_ascii s -> is_text s.
Proof. intros H. destruct (ascii_encode s H) as [H1 H2]. exists s. split; [exact H1 | now rewrite H2]. Qed.

Lemma text_app a b : is_text a -> is_text b -> is_text (a ++ b).
Proof. intros (ua & Ha & ->) (ub & Hb & ->). exists (ua ++ ub). rewrite cesu8_encode_app. split; [now apply Forall_app | reflexivity]. Qed.

Lemma bytes_at_all s : bytes_at s (zlength s) = Some s.
Proof.
  unfold bytes_at. pose proof (zlength_nonneg s). destruct (Z.leb_spec 0 (zlength s)), (Z.leb_spec (zlength s) (zlength s)); try lia. cbn [andb].
  unfold zlength. now rewrite Nat2Z.id, firstn_all.
Qed.

Section Repr.
Context (T : magic_tables).

(** External magic strings fit into direct strings *)
Definition tables_direct : Prop := LIT_MAGIC_STRING__COUNT T + zlength (lit_magic_string_ex_array T) <= ECMA_DIRECT_STRING_MAX_IMM + 1.

(** ** The strings without characters of their own *)

Inductive special_string := MAGIC (id : Z) | UINT (n : Z) | MAGIC_EX (id : Z).

(** The integer a string is the notation of *)
Definition number_of (s : list Z) : option Z :=
  let n := digits_value s in
  if (0 <=? n) && (n <? B32) && bool_decide (s = decimal n) then Some n else None.

Definition special (s : list Z) : option special_string :=
  match index_of s (lit_magic_strings T) with
  | Some id => Some (MAGIC id)
  | None =>
      match number_of s with
      | Some n => Some (UINT n)
      | None => match index_of s (lit_magic_string_ex_array T) with Some id => Some (MAGIC_EX id) | None => None end
      end
  end.

Definition special_chars (r : special_string) : option (list Z) :=
  match r with
  | MAGIC id => lit_get_magic_string_utf8 T id
  | UINT n => Some (decimal n)
  | MAGIC_EX id => lit_get_magic_string_ex_utf8 T id
  end.

(** A block with the characters [s] *)
Definition heap_string (x : ecma_string_t) (s : list Z) : Prop :=
  u x = lit_utf8_string_calc_hash s /\ s <> [] /\
  match data x with
  | ASCII size_field buffer => ECMA_STRING_GET_CONTAINER x = ECMA_STRING_CONTAINER_HEAP_ASCII_STRING /\ buffer = s
      /\ Forall is_ascii s /\ size_field = zlength s - 1 /\ zlength s <= 256
  | SHORT size length buffer => ECMA_STRING_GET_CONTAINER x = ECMA_STRING_CONTAINER_HEAP_UTF8_STRING /\ buffer = s
      /\ size = zlength s /\ lit_utf8_string_length s = Some length /\ zlength s <= 65535
  | LONG size length buffer | EXTERNAL size length buffer _ => ECMA_STRING_GET_CONTAINER x = ECMA_STRING_CONTAINER_LONG_OR_EXTERNAL_STRING /\ buffer = s
      /\ size = zlength s /\ lit_utf8_string_length s = Some length
  | HEAD | EXTENDED _ => False
  end.

Definition uint32_descriptor (x : ecma_string_t) (n : Z) : Prop :=
  data x = HEAD /\ ECMA_STRING_GET_CONTAINER x = ECMA_STRING_CONTAINER_UINT32_IN_DESC /\ u x = n.

Definition string_is (m : memory) (p : Z) (s : list Z) : Prop :=
  is_text s /\ zlength s < B32 - 1 /\
  match special s with
  | Some (MAGIC id) => p = ecma_get_magic_string id
  | Some (UINT n) =>
      if n <=? ECMA_DIRECT_STRING_MAX_IMM then p = ecma_get_ecma_string_from_uint32 n
      else is_block p /\ exists x, string_at m p = Some x /\ uint32_descriptor x n
  | Some (MAGIC_EX id) => p = ecma_get_magic_string (LIT_MAGIC_STRING__COUNT T + id)
  | None => is_block p /\ exists x, string_at m p = Some x /\ heap_string x s
  end.

Context (HT : tables_ok T) (HD : tables_direct).

Lemma number_of_some s n : number_of s = Some n <-> is_u32 n /\ s = decimal n.
Proof.
  unfold number_of. split.
  - destruct (Z.leb_spec 0 (digits_value s)), (Z.ltb_spec (digits_value s) B32); cbn [andb]; try discriminate.
    case_bool_decide as E; [| discriminate]. intros [= <-]. split; [split; assumption | exact E].
  - intros [Hn ->]. destruct (decimal_spec n Hn) as ((_ & -> & _) & _). unfold is_u32 in Hn.
    destruct (Z.leb_spec 0 n), (Z.ltb_spec n B32); try lia. cbn [andb]. now rewrite bool_decide_eq_true_2.
Qed.

(** The code's test *)
Lemma number_of_code s : number_of s = match s with c :: _ => if (LIT_CHAR_0 <=? c) && (c <=? LIT_CHAR_9) then ecma_string_to_array_index s else None | [] => None end.
Proof.
  assert (Hnone : (match s with c :: _ => is_digit c | [] => False end -> False) -> number_of s = None).
  { intros H. destruct (number_of s) as [n |] eqn:E; [| reflexivity]. exfalso. apply H. apply number_of_some in E as [Hn ->].
    destruct (decimal_head n Hn) as (c & rest & -> & Hc). exact Hc. }
  destruct s as [| c rest]; [now apply Hnone |]. unfold LIT_CHAR_0, LIT_CHAR_9.
  destruct (Z.leb_spec 48 c), (Z.leb_spec c 57); cbn [andb]; try (apply Hnone; unfold is_digit; lia).
  assert (Hspec : forall n, ecma_string_to_array_index (c :: rest) = Some n <-> is_decimal (c :: rest) n /\ is_u32 n) by (intros n; apply array_index_spec; unfold is_digit; lia).
  destruct (ecma_string_to_array_index (c :: rest)) as [n |].
  - destruct (proj1 (Hspec n) eq_refl) as [Hd Hn]. apply number_of_some. split; [exact Hn |]. apply (decimal_unique _ _ n); [exact Hd | now apply decimal_spec].
  - destruct (number_of (c :: rest)) as [n |] eqn:E; [| reflexivity]. apply number_of_some in E as [Hn E].
    assert (is_decimal (c :: rest) n) as Hd by (rewrite E; now apply decimal_spec). destruct (proj2 (Hspec n) (conj Hd Hn)). reflexivity.
Qed.

Lemma special_chars_of s r : special s = Some r -> special_chars r = Some s.
Proof.
  unfold special. destruct (index_of s (lit_magic_strings T)) as [i |] eqn:E.
  - intros [= <-]. now apply (index_of_some _ _ _ (magic_sorted T HT)) in E.
  - destruct (number_of s) as [n |] eqn:En; [intros [= <-]; apply number_of_some in En as [_ ->]; reflexivity |].
    destruct (index_of s (lit_magic_string_ex_array T)) as [i |] eqn:Ex; [| discriminate]. intros [= <-]. now apply (index_of_some _ _ _ (ex_sorted T HT)) in Ex.
Qed.

Lemma special_number s n : number_of s = Some n <-> special s = Some (UINT n).
Proof.
  split; intros H.
  - unfold special. destruct (index_of s (lit_magic_strings T)) as [i |] eqn:E; [exfalso | now rewrite H].
    apply number_of_some in H as [Hn ->]. destruct (decimal_head n Hn) as (c & rest & Es & Hc). rewrite Es in E.
    apply (index_of_some _ _ _ (magic_sorted T HT)) in E. pose proof (magic_no_digit T HT) as Hd. rewrite List.Forall_forall in Hd.
    apply (Hd (c :: rest)); [apply at_index_in; now exists i | exact Hc].
  - unfold special in H. destruct (index_of s (lit_magic_strings T)); [discriminate |]. destruct (number_of s) as [k |]; [congruence |].
    destruct (index_of s (lit_magic_string_ex_array T)); discriminate.
Qed.

(** Strings with the same representation are the same *)
Lemma special_inj s t r : special s = Some r -> special t = Some r -> s = t.
Proof. intros Hs Ht. apply special_chars_of in Hs, Ht. congruence. Qed.

Lemma special_ranges s r : special s = Some r ->
  match r with
  | MAGIC id => 0 <= id < zlength (lit_magic_strings T)
  | UINT n => is_u32 n
  | MAGIC_EX id => 0 <= id < zlength (lit_magic_string_ex_array T)
  end.
Proof.
  intros E. pose proof (special_chars_of s r E) as Hc. destruct r; cbn [special_chars] in Hc; [eapply at_index_bound; exact Hc | | eapply at_index_bound; exact Hc].
  unfold special in E. destruct (index_of s (lit_magic_strings T)); [discriminate |]. destruct (number_of s) as [k |] eqn:En.
  - assert (k = n) as -> by congruence. now apply number_of_some in En.
  - destruct (index_of s (lit_magic_string_ex_array T)); discriminate.
Qed.

(** ** Words *)

Definition direct_max : Z := ECMA_DIRECT_STRING_MAX_IMM.

Lemma direct_range v : 0 <= v <= ECMA_DIRECT_STRING_MAX_IMM -> 0 <= v < 2 ^ 59.
Proof. unfold ECMA_DIRECT_STRING_MAX_IMM. change (2 ^ 59) with 576460752303423488. lia. Qed.

Lemma direct_fields type v : 0 <= type < 4 -> 0 <= v <= ECMA_DIRECT_STRING_MAX_IMM -> let p := ECMA_CREATE_DIRECT_STRING type v in
  ECMA_IS_DIRECT_STRING p = true /\ ECMA_GET_DIRECT_STRING_TYPE p = type /\ u32 (ECMA_GET_DIRECT_STRING_VALUE p) = v
  /\ forall t, 0 <= t < 4 -> ECMA_IS_DIRECT_STRING_WITH_TYPE p t = (t =? type).
Proof.
  intros Ht Hv p. destruct (direct_string_fields type v Ht (direct_range v Hv)) as (H1 & H2 & H3 & _ & H5). subst p. rewrite H3. splits; try assumption.
  apply u32_small. unfold ECMA_DIRECT_STRING_MAX_IMM in Hv. unfold is_u32. lia.
Qed.

Lemma ids_direct id : 0 <= id < LIT_MAGIC_STRING__COUNT T -> 0 <= id <= ECMA_DIRECT_STRING_MAX_IMM.
Proof. pose proof (magic_count T HT). unfold ECMA_DIRECT_STRING_MAX_IMM. lia. Qed.

(** What a string is, with the facts the functions need *)
Inductive view (m : memory) (p : Z) (s : list Z) : Prop :=
| view_magic id : p = ecma_get_magic_string id -> 0 <= id < LIT_MAGIC_STRING__COUNT T -> special s = Some (MAGIC id) ->
    lit_get_magic_string_utf8 T id = Some s -> Forall is_ascii s -> view m p s
| view_ex id : p = ecma_get_magic_string (LIT_MAGIC_STRING__COUNT T + id) -> 0 <= id -> LIT_MAGIC_STRING__COUNT T + id <= ECMA_DIRECT_STRING_MAX_IMM ->
    special s = Some (MAGIC_EX id) -> lit_get_magic_string_ex_utf8 T id = Some s -> view m p s
| view_uint n : p = ecma_get_ecma_string_from_uint32 n -> 0 <= n <= ECMA_DIRECT_STRING_MAX_IMM -> special s = Some (UINT n) -> s = decimal n -> view m p s
| view_descriptor n x : is_block p -> string_at m p = Some x -> uint32_descriptor x n -> is_u32 n -> ECMA_DIRECT_STRING_MAX_IMM < n ->
    special s = Some (UINT n) -> s = decimal n -> view m p s
| view_heap x : is_block p -> string_at m p = Some x -> heap_string x s -> special s = None -> view m p s.

Lemma string_view m p s : string_is m p s -> view m p s.
Proof.
  intros (_ & _ & H). destruct (special s) as [[id | n | id] |] eqn:E.
  - pose proof (special_chars_of _ _ E) as Hc. pose proof (special_ranges _ _ E) as Hr; cbn in Hr. pose proof (magic_count T HT).
    apply (view_magic m p s id); [exact H | lia | exact E | exact Hc |].
    pose proof (magic_ascii T HT) as Ha. rewrite List.Forall_forall in Ha. apply Ha. apply at_index_in. now exists id.
  - pose proof (special_ranges _ _ E) as Hr; cbn in Hr. pose proof (special_chars_of _ _ E) as Hc. cbn in Hc. injection Hc as Hc.
    destruct (Z.leb_spec n ECMA_DIRECT_STRING_MAX_IMM).
    + apply (view_uint m p s n); [exact H | unfold is_u32 in Hr; lia | exact E | now symmetry].
    + destruct H as (Hb & x & Hx & Hd). now apply (view_descriptor m p s n x).
  - pose proof (special_chars_of _ _ E) as Hc. pose proof (special_ranges _ _ E) as Hr; cbn in Hr. pose proof HD. unfold tables_direct in *.
    apply (view_ex m p s id); [exact H | lia | lia | exact E | exact Hc].
  - destruct H as (Hb & x & Hx & Hd). now apply (view_heap m p s x).
Qed.
End Repr.
