(* ===== verification/StringAccess.v ===== *)
(** * Access to strings

    Under the representation predicate of StringRepr every reading function of
    StringData computes the same for all representations: what the characters
    say.  Comparison by representation is comparison of characters. *)
From Stdlib Require Import ZArith Lia Bool List.
From stdpp Require Import base gmap list.
From S2P Require Import Prelude LitChars LitStrings JmemHeap JmemPointers Values BlockHeap MagicStrings MagicTable StringData Decimal StringRepr.
Import ListNotations.
#[local] Open Scope Z_scope.

Lemma code_points_ascii s : Forall is_ascii s -> code_points s = s /\ utf8_encode s = s.
Proof.
  induction 1 as [| c s Hc Hs [IH1 IH2]]; [now split |]. split.
  - rewrite code_points_single; [now rewrite IH1 |]. unfold is_high, is_ascii, LIT_UTF16_HIGH_SURROGATE_MIN in *. lia.
  - rewrite utf8_encode_cons, IH2, code_point_to_utf8_unit, ascii_unit by (assumption || (unfold is_ascii in Hc; lia)). reflexivity.
Qed.

Lemma is_decimal_ascii s n : is_decimal s n -> Forall is_ascii s.
Proof. intros (Hd & _). eapply Forall_impl; [exact Hd |]. unfold is_digit, is_ascii. lia. Qed.

Lemma decimal_ascii n : is_u32 n -> Forall is_ascii (decimal n).
Proof. intros Hn. apply (is_decimal_ascii _ n). now apply decimal_spec. Qed.

(** The fields of a block agree with its characters *)
Lemma heap_fields x units : Forall is_u16 units -> heap_string x (cesu8_encode units) -> let s := cesu8_encode units in
  match data x with
  | ASCII size_field buffer => ECMA_STRING_GET_CONTAINER x = ECMA_STRING_CONTAINER_HEAP_ASCII_STRING /\ buffer = s /\ ECMA_ASCII_STRING_GET_SIZE size_field = zlength s
      /\ zlength s = zlength units /\ s = units /\ Forall is_ascii units
  | SHORT size length buffer => ECMA_STRING_GET_CONTAINER x = ECMA_STRING_CONTAINER_HEAP_UTF8_STRING /\ buffer = s /\ size = zlength s /\ length = zlength units
  | LONG size length buffer | EXTERNAL size length buffer _ =>
      ECMA_STRING_GET_CONTAINER x = ECMA_STRING_CONTAINER_LONG_OR_EXTERNAL_STRING /\ buffer = s /\ size = zlength s /\ length = zlength units
  | HEAD | EXTENDED _ => False
  end.
Proof.
  intros Hu (_ & _ & H) s. subst s. pose proof (text_length units Hu) as Hl. destruct (data x); try exact H.
  - destruct H as (H1 & H2 & H3 & H4 & H5). rewrite ascii_length in Hl by exact H3. assert (zlength (cesu8_encode units) = zlength units) as E by congruence.
    destruct (encode_same_length units Hu E). unfold ECMA_ASCII_STRING_GET_SIZE. splits; try assumption; lia.
  - destruct H as (H1 & H2 & H3 & H4 & _). splits; try assumption. congruence.
  - destruct H as (H1 & H2 & H3 & H4). splits; try assumption. congruence.
  - destruct H as (H1 & H2 & H3 & H4). splits; try assumption. congruence.
Qed.

(** ** Cuts between characters *)

(** The leading units whose encodings fit into [room] bytes *)
Fixpoint units_fitting (room : Z) (units : list Z) : list Z :=
  match units with
  | [] => []
  | u :: units => let size := zlength (lit_code_unit_to_utf8 u) in if room <? size then [] else u :: units_fitting (room - size) units
  end.

Lemma whole_extra extra : Forall (fun b => is_extra_byte b = true) extra -> forall c rest k, is_extra_byte c = false -> (k <= length extra)%nat ->
  whole_characters (c :: extra ++ rest) k = Some 0.
Proof.
  intros He c rest k Hc. induction k as [| k IH]; intros Hk; cbn [whole_characters nth_error]; [now rewrite Hc |].
  rewrite nth_error_app1 by lia. destruct (nth_error extra k) as [b |] eqn:E; [| apply nth_error_None in E; lia].
  apply nth_error_In in E. rewrite List.Forall_forall in He. rewrite (He b E). apply IH. lia.
Qed.

Lemma whole_app a c rest k : is_extra_byte c = false -> whole_characters (a ++ c :: rest) (length a + k) = option_map (Z.add (zlength a)) (whole_characters (c :: rest) k).
Proof.
  intros Hc. induction k as [| k IH].
  - rewrite Nat.add_0_r. destruct (length a) as [| n] eqn:En.
    + destruct a; [| discriminate]. cbn. now rewrite Hc.
    + cbn [whole_characters]. rewrite nth_error_app2, En, Nat.sub_diag by lia. cbn [nth_error]. rewrite Hc. cbn [option_map]. unfold zlength. f_equal. lia.
  - rewrite Nat.add_succ_r. cbn [whole_characters]. rewrite nth_error_app2 by lia. replace (S (length a + k) - length a)%nat with (S k) by lia.
    destruct (nth_error (c :: rest) (S k)) as [b |]; [| reflexivity]. destruct (is_extra_byte b); [exact IH |]. cbn [option_map]. unfold zlength. f_equal. lia.
Qed.

Lemma whole_characters_spec units : Forall is_u16 units -> forall n, Z.of_nat n < zlength (cesu8_encode units) ->
  whole_characters (cesu8_encode units) n = Some (zlength (cesu8_encode (units_fitting (Z.of_nat n) units))).
Proof.
  induction 1 as [| u units Hu Hus IH]; intros n Hn; [unfold zlength in Hn; cbn in Hn; lia |].
  rewrite cesu8_encode_cons, zlength_app in *. cbn [units_fitting]. cbv zeta. destruct (unit_lead u Hu) as (c & extra & E & Hc & He).
  destruct (Z.ltb_spec (Z.of_nat n) (zlength (lit_code_unit_to_utf8 u))) as [Hlt | Hge].
  - rewrite E in *. unfold zlength in Hlt. cbn [length app] in *. rewrite whole_extra; [reflexivity | exact He | exact Hc | lia].
  - rewrite cesu8_encode_cons, zlength_app. destruct Hus as [| v units Hv Hus]; [unfold zlength at 2 in Hn; cbn in Hn; lia |].
    destruct (unit_lead v Hv) as (d & extra' & E' & Hd & _). rewrite cesu8_encode_cons, E' in *. cbn [app] in *.
    assert (n = length (lit_code_unit_to_utf8 u) + (n - length (lit_code_unit_to_utf8 u)))%nat as E2 by (unfold zlength in Hge; lia).
    rewrite E2 at 1. rewrite whole_app by exact Hd. rewrite IH by (unfold zlength in *; lia). cbn [option_map]. do 5 f_equal. unfold zlength. lia.
Qed.

Lemma fitting_prefix units : forall room, exists rest, units = units_fitting room units ++ rest.
Proof.
  induction units as [| u units IH]; intros room; [now exists [] |]. cbn [units_fitting]. cbv zeta.
  destruct (room <? _); [now exists (u :: units) |]. destruct (IH (room - zlength (lit_code_unit_to_utf8 u))) as [rest Hr].
  exists rest. cbn [app]. now rewrite <- Hr.
Qed.

Lemma first_fitting units room : firstn (Z.to_nat (zlength (cesu8_encode (units_fitting room units)))) (cesu8_encode units) = cesu8_encode (units_fitting room units).
Proof. destruct (fitting_prefix units room) as [rest E]. rewrite E at 2. rewrite cesu8_encode_app. apply first_app. Qed.

Lemma fitting_all units : Forall is_u16 units -> forall room, zlength (cesu8_encode units) <= room -> units_fitting room units = units.
Proof.
  induction 1 as [| u units Hu Hus IH]; intros room Hr; [reflexivity |]. rewrite cesu8_encode_cons, zlength_app in Hr. cbn [units_fitting]. cbv zeta.
  pose proof (zlength_nonneg (cesu8_encode units)). destruct (Z.ltb_spec room (zlength (lit_code_unit_to_utf8 u))); [lia |]. f_equal. apply IH. lia.
Qed.

(** ASCII characters are cut anywhere *)
Lemma utf8_fitting_ascii s : Forall is_ascii s -> forall room, 0 <= room -> utf8_fitting room s = firstn (Z.to_nat room) s.
Proof.
  induction 1 as [| c s Hc Hs IH]; intros room Hr; [now rewrite firstn_nil |]. cbn [utf8_fitting]. cbv zeta.
  rewrite code_point_to_utf8_unit, ascii_unit by (assumption || (unfold is_ascii in Hc; lia)). unfold zlength. cbn [length]. change (Z.of_nat 1) with 1.
  destruct (Z.ltb_spec room 1).
  - assert (room = 0) as -> by lia. reflexivity.
  - rewrite IH by lia. replace (Z.to_nat room) with (S (Z.to_nat (room - 1))) by lia. reflexivity.
Qed.

Section Access.
Context (T : magic_tables) (HT : tables_ok T) (HD : tables_direct T).
Context (m : memory) (p : Z) (units : list Z) (Hu : Forall is_u16 units) (Hp : string_is T m p (cesu8_encode units)).

Lemma ex_id id : 0 <= id -> LIT_MAGIC_STRING__COUNT T + id <= ECMA_DIRECT_STRING_MAX_IMM -> 0 <= LIT_MAGIC_STRING__COUNT T + id <= ECMA_DIRECT_STRING_MAX_IMM.
Proof. pose proof (magic_count T HT). pose proof (zlength_nonneg (lit_magic_strings T)). lia. Qed.

Lemma count_nonneg : 0 <= LIT_MAGIC_STRING__COUNT T.
Proof. pose proof (magic_count T HT). pose proof (zlength_nonneg (lit_magic_strings T)). lia. Qed.

(** ASCII characters are their own code units *)
Lemma ascii_units : Forall is_ascii (cesu8_encode units) -> cesu8_encode units = units /\ Forall is_ascii units.
Proof.
  intros Ha. apply encode_same_length; [exact Hu |]. pose proof (ascii_length _ Ha). rewrite (text_length units Hu) in H. congruence.
Qed.

(** A case for each representation, with the tests on the word evaluated *)
Ltac direct_word E type H :=
  let H1 := fresh in let H2 := fresh in let H3 := fresh in let H4 := fresh in
  destruct (direct_fields type _ ltac:(unfold ECMA_DIRECT_STRING_MAGIC, ECMA_DIRECT_STRING_UINT; lia) H) as (H1 & H2 & H3 & H4); unfold ecma_get_magic_string, ecma_get_ecma_string_from_uint32 in E;
  rewrite <- E in H1, H2, H3, H4; rewrite ?H1, ?H2, ?H3, ?H4 by (unfold ECMA_DIRECT_STRING_UINT, ECMA_DIRECT_STRING_MAGIC; lia); clear H1 H2 H3 H4.

Ltac representations :=
  destruct (string_view T HT HD m p _ Hp) as [id E Hid Hs Hm Ha | id E Hid Hmax Hs Hm | n E Hn Hs Hm | n x Hb Hx Hd Hn Hmax Hs Hm | x Hb Hx Hh Hs];
  [ direct_word E ECMA_DIRECT_STRING_MAGIC (ids_direct T HT id Hid); destruct (Z.leb_spec (LIT_MAGIC_STRING__COUNT T) id), (Z.ltb_spec id (LIT_MAGIC_STRING__COUNT T)); try lia
  | direct_word E ECMA_DIRECT_STRING_MAGIC (ex_id id Hid Hmax); destruct (Z.leb_spec (LIT_MAGIC_STRING__COUNT T) (LIT_MAGIC_STRING__COUNT T + id)), (Z.ltb_spec (LIT_MAGIC_STRING__COUNT T + id) (LIT_MAGIC_STRING__COUNT T)); try lia;
    rewrite ?(Z.add_simpl_l (LIT_MAGIC_STRING__COUNT T) id), ?(u32_small id) by (pose proof count_nonneg; unfold ECMA_DIRECT_STRING_MAX_IMM in *; unfold is_u32; lia)
  | direct_word E ECMA_DIRECT_STRING_UINT Hn
  | rewrite ?(block_not_direct p Hb), ?Hx; destruct Hd as (Hd1 & Hd2 & Hd3); rewrite ?Hd1, ?Hd2, ?Hd3
  | rewrite ?(block_not_direct p Hb), ?Hx; pose proof (heap_fields x units Hu Hh) as Hf; destruct (data x) as [| size_field buffer | size len buffer | size len buffer | size len buffer user | d] eqn:Ed;
    try contradiction; [destruct Hf as (-> & -> & Hsize & Hlen & Hself & Hasc) | destruct Hf as (-> & -> & -> & ->) | destruct Hf as (-> & -> & -> & ->) | destruct Hf as (-> & -> & -> & ->)] ];
  cbn -[lit_utf8_string_length lit_get_magic_string_utf8 lit_get_magic_string_ex_utf8 bytes_at ecma_uint32_to_utf8_string ecma_string_get_uint32_size Z.add zlength].

Lemma uint_range n : 0 <= n <= ECMA_DIRECT_STRING_MAX_IMM -> is_u32 n.
Proof. unfold ECMA_DIRECT_STRING_MAX_IMM, is_u32. lia. Qed.

Lemma chars_spec : relational_chars T m p = Some (cesu8_encode units).
Proof.
  unfold relational_chars, ecma_string_get_chars_fast, magic_chars. representations.
  - exact Hm.
  - exact Hm.
  - rewrite Hm. apply decimal_spec; [now apply uint_range | now apply decimal_spec, uint_range].
  - rewrite Hm. now apply decimal_spec; [| apply decimal_spec].
  - rewrite Hsize. apply bytes_at_all.
  - apply bytes_at_all.
  - apply bytes_at_all.
  - apply bytes_at_all.
Qed.

(** ** Sizes and lengths *)

Lemma ascii_size_chars : Forall is_ascii (cesu8_encode units) -> zlength (cesu8_encode units) = zlength units
  /\ zlength (code_points units) = zlength units /\ zlength (utf8_encode (code_points units)) = zlength units.
Proof. intros Ha. destruct (ascii_units Ha) as [-> Hu']. destruct (code_points_ascii units Hu') as [-> ->]. now splits. Qed.

Lemma not_sentinel k : 0 <= k -> k < B32 - 1 -> (k =? ECMA_STRING_NO_ASCII_SIZE) = false.
Proof. intros. unfold ECMA_STRING_NO_ASCII_SIZE. apply Z.eqb_neq. lia. Qed.

(** What the functions of the family compute, for an [f] that agrees with the size of ASCII strings *)
Lemma measure_spec stored measured r :
  (Forall is_ascii (cesu8_encode units) -> r = zlength units) -> measured (cesu8_encode units) = Some r ->
  stored (zlength (cesu8_encode units)) (zlength units) (Some (cesu8_encode units)) = Some r -> measure T m p stored measured = Some r.
Proof.
  intros Hascii Hmeasured Hstored. pose proof (proj1 (proj2 Hp)) as Hbound. pose proof (zlength_nonneg (cesu8_encode units)) as Hnn.
  unfold measure, ecma_string_get_ascii_size, magic_ex_chars, lit_get_magic_string_size. representations.
  - rewrite Hm. cbn [option_map]. rewrite not_sentinel by assumption. cbn [negb]. rewrite (Hascii Ha). now rewrite (proj1 (ascii_size_chars Ha)).
  - rewrite Hm. exact Hmeasured.
  - pose proof (uint_range n Hn) as Hn'. rewrite uint32_size_spec by exact Hn'. rewrite <- Hm. rewrite not_sentinel by assumption. cbn [negb].
    assert (Ha : Forall is_ascii (cesu8_encode units)) by (rewrite Hm; now apply decimal_ascii). now rewrite (Hascii Ha), (proj1 (ascii_size_chars Ha)).
  - rewrite uint32_size_spec by exact Hn. rewrite <- Hm. rewrite not_sentinel by assumption. cbn [negb].
    assert (Ha : Forall is_ascii (cesu8_encode units)) by (rewrite Hm; now apply decimal_ascii). now rewrite (Hascii Ha), (proj1 (ascii_size_chars Ha)).
  - rewrite Hsize, not_sentinel by assumption. cbn [negb]. rewrite Hascii, Hlen; [reflexivity |]. now rewrite Hself.
  - now rewrite bytes_at_all.
  - now rewrite bytes_at_all.
  - now rewrite bytes_at_all.
Qed.

Lemma length_spec : ecma_string_get_length T m p = Some (zlength units).
Proof. apply measure_spec; [reflexivity | now apply text_length | reflexivity]. Qed.

Lemma size_spec : ecma_string_get_size T m p = Some (zlength (cesu8_encode units)).
Proof. apply measure_spec; [apply ascii_size_chars | reflexivity | reflexivity]. Qed.

(** Equal size and length mean ASCII *)
Lemma unless_ascii_spec f r : f (cesu8_encode units) = Some r -> (Forall is_ascii (cesu8_encode units) -> r = zlength units) ->
  unless_ascii f (zlength (cesu8_encode units)) (zlength units) (Some (cesu8_encode units)) = Some r.
Proof.
  intros Hf Ha. unfold unless_ascii. destruct (Z.eqb_spec (zlength (cesu8_encode units)) (zlength units)) as [E | _]; [| exact Hf].
  destruct (encode_same_length units Hu E) as [E' Hu']. rewrite Ha; [now rewrite E | now rewrite E'].
Qed.

Lemma utf8_length_spec : ecma_string_get_utf8_length T m p = Some (zlength (code_points units)).
Proof.
  assert (Ha : Forall is_ascii (cesu8_encode units) -> zlength (code_points units) = zlength units) by apply ascii_size_chars.
  apply measure_spec; [exact Ha | now apply utf8_length_encode |]. apply unless_ascii_spec; [now apply utf8_length_encode | exact Ha].
Qed.

Lemma string_utf8_size_spec : ecma_string_get_utf8_size T m p = Some (zlength (utf8_encode (code_points units))).
Proof.
  assert (Ha : Forall is_ascii (cesu8_encode units) -> zlength (utf8_encode (code_points units)) = zlength units) by apply ascii_size_chars.
  apply measure_spec; [exact Ha | now apply utf8_size_encode |]. apply unless_ascii_spec; [now apply utf8_size_encode | exact Ha].
Qed.

(** ** Characters *)

Lemma unit_at index : 0 <= index < zlength units -> at_index units index = nth_error units (Z.to_nat index).
Proof. intros H. unfold at_index. destruct (Z.ltb_spec index 0); [lia | reflexivity]. Qed.

Lemma code_unit_at index : 0 <= index < zlength units ->
  code_unit_of (zlength (cesu8_encode units)) (zlength units) (Some (cesu8_encode units)) index = at_index units index.
Proof.
  intros Hi. unfold code_unit_of, nth_byte. destruct (Z.eqb_spec (zlength (cesu8_encode units)) (zlength units)) as [E | _].
  - now destruct (encode_same_length units Hu E) as [-> _].
  - rewrite unit_at, code_unit_at_encode; [reflexivity | exact Hu | unfold zlength in Hi; lia | exact Hi].
Qed.

Lemma uint32_char_spec n index : is_u32 n -> cesu8_encode units = decimal n -> uint32_char_at n index = at_index units index.
Proof.
  intros Hn E. unfold uint32_char_at, nth_byte. destruct (decimal_spec n Hn) as (Hd & Hl & He). rewrite He by exact Hl.
  rewrite <- E. destruct (ascii_units) as [-> _]; [| reflexivity]. rewrite E. now apply decimal_ascii.
Qed.

Lemma char_at_spec index : 0 <= index < zlength units -> ecma_string_get_char_at_pos T m p index = at_index units index.
Proof.
  intros Hi. unfold ecma_string_get_char_at_pos, ecma_external_string_get_char_at_pos. representations.
  - rewrite Hm. unfold nth_byte. now destruct (ascii_units Ha) as [-> _].
  - rewrite Hm, text_length by assumption.
    now apply code_unit_at.
  - apply uint32_char_spec; [now apply uint_range | exact Hm].
  - now apply uint32_char_spec.
  - now rewrite Hself.
  - rewrite bytes_at_all. now apply code_unit_at.
  - rewrite bytes_at_all. now apply code_unit_at.
  - rewrite bytes_at_all. now apply code_unit_at.
Qed.

(** ** Indices, numbers of magic strings and hashes *)

Lemma array_index_value : ecma_string_get_array_index m p
  = Some (match special T (cesu8_encode units) with Some (UINT n) => n | _ => ECMA_STRING_NOT_ARRAY_INDEX end).
Proof. unfold ecma_string_get_array_index. representations; now rewrite ?Hs. Qed.

Lemma block_not_with_type q t : is_block q -> 0 <= t < 4 -> ECMA_IS_DIRECT_STRING_WITH_TYPE q t = false.
Proof.
  intros [_ [k ->]] Ht. unfold ECMA_IS_DIRECT_STRING_WITH_TYPE. rewrite direct_string_word by (try (change (2 ^ 59) with 576460752303423488); lia).
  change ECMA_DIRECT_STRING_MASK with (Z.ones 5). rewrite Z.land_ones by lia. change (2 ^ 5) with 32. apply Z.eqb_neq. zmod.
Qed.

Lemma string_magic_value : ecma_get_string_magic T p = match special T (cesu8_encode units) with Some (MAGIC id) => id | _ => LIT_MAGIC_STRING__COUNT T end.
Proof.
  unfold ecma_get_string_magic.
  destruct (string_view T HT HD m p _ Hp) as [id E Hid Hs Hm Ha | id E Hid Hmax Hs Hm | n E Hn Hs Hm | n x Hb Hx Hd Hn Hmax Hs Hm | x Hb Hx Hh Hs]; rewrite Hs.
  - direct_word E ECMA_DIRECT_STRING_MAGIC (ids_direct T HT id Hid). cbn. destruct (Z.ltb_spec id (LIT_MAGIC_STRING__COUNT T)); [reflexivity | lia].
  - direct_word E ECMA_DIRECT_STRING_MAGIC (ex_id id Hid Hmax). cbn. destruct (Z.ltb_spec (LIT_MAGIC_STRING__COUNT T + id) (LIT_MAGIC_STRING__COUNT T)); [lia | reflexivity].
  - direct_word E ECMA_DIRECT_STRING_UINT Hn. reflexivity.
  - now rewrite block_not_with_type by (unfold ECMA_DIRECT_STRING_MAGIC; easy).
  - now rewrite block_not_with_type by (unfold ECMA_DIRECT_STRING_MAGIC; easy).
Qed.

(** Strings with the same characters have the same hash: the hash depends on the characters only *)
Definition hash_value (s : list Z) : Z :=
  match special T s with
  | Some (MAGIC id) => id
  | Some (UINT n) => n
  | Some (MAGIC_EX id) => LIT_MAGIC_STRING__COUNT T + id
  | None => lit_utf8_string_calc_hash s
  end.

Lemma string_hash_value : ecma_string_hash m p = Some (hash_value (cesu8_encode units)).
Proof.
  unfold ecma_string_hash, hash_value.
  destruct (string_view T HT HD m p _ Hp) as [id E Hid Hs Hm Ha | id E Hid Hmax Hs Hm | n E Hn Hs Hm | n x Hb Hx Hd Hn Hmax Hs Hm | x Hb Hx Hh Hs]; rewrite Hs.
  - now direct_word E ECMA_DIRECT_STRING_MAGIC (ids_direct T HT id Hid).
  - now direct_word E ECMA_DIRECT_STRING_MAGIC (ex_id id Hid Hmax).
  - now direct_word E ECMA_DIRECT_STRING_UINT Hn.
  - rewrite block_not_direct, Hx by exact Hb. cbn. now destruct Hd as (_ & _ & ->).
  - rewrite block_not_direct, Hx by exact Hb. cbn. now destruct Hh as (-> & _).
Qed.

(** ** Copies *)

Lemma get_chars_fast_spec : number_of (cesu8_encode units) = None -> ecma_string_get_chars_fast T m p = Some (cesu8_encode units).
Proof.
  intros Hno. unfold ecma_string_get_chars_fast, magic_chars. representations; try assumption; try apply bytes_at_all.
  - exfalso. rewrite (proj2 (number_of_some _ n)) in Hno by (split; [now apply uint_range | exact Hm]). discriminate.
  - exfalso. rewrite (proj2 (number_of_some _ n)) in Hno by (split; [exact Hn | exact Hm]). discriminate.
  - rewrite Hsize. apply bytes_at_all.
Qed.

(** What is copied to a buffer of [buffer_size] bytes: integers are cut anywhere, other characters as a whole *)
Lemma first_ascii buffer_size : 0 <= buffer_size -> Forall is_ascii units -> cesu8_encode (units_fitting buffer_size units) = firstn (Z.to_nat buffer_size) units.
Proof.
  intros Hb Ha. revert buffer_size Hb. clear Hp Hu. induction Ha as [| c s Hc Hs IH]; intros room Hr; [now rewrite firstn_nil |]. cbn [units_fitting]. cbv zeta.
  rewrite ascii_unit by exact Hc. unfold zlength. cbn [length]. change (Z.of_nat 1) with 1. destruct (Z.ltb_spec room 1).
  - assert (room = 0) as -> by lia. reflexivity.
  - rewrite cesu8_encode_cons, ascii_unit, IH by (exact Hc || lia). replace (Z.to_nat room) with (S (Z.to_nat (room - 1))) by lia. reflexivity.
Qed.

Lemma first_min {A} (l : list A) n : 0 <= n -> firstn (Z.to_nat (Z.min n (zlength l))) l = firstn (Z.to_nat n) l.
Proof.
  intros Hn. destruct (Z.le_gt_cases n (zlength l)); [now rewrite Z.min_l by assumption |]. rewrite Z.min_r by lia. unfold zlength in *.
  rewrite !firstn_all2 by lia. reflexivity.
Qed.

Lemma uint32_buffer_spec n buffer_size : is_u32 n -> cesu8_encode units = decimal n -> 0 <= buffer_size ->
  ecma_uint32_to_buffer n buffer_size = Some (cesu8_encode (units_fitting buffer_size units)) /\ utf8_fitting buffer_size (code_points units) = cesu8_encode (units_fitting buffer_size units).
Proof.
  intros Hn E Hb. unfold ecma_uint32_to_buffer. destruct (decimal_spec n Hn) as (Hd & Hl & He). rewrite He by exact Hl.
  destruct ascii_units as [Hself Ha]; [rewrite E; now apply decimal_ascii |]. rewrite first_ascii, <- E, Hself, first_min by assumption. split; [reflexivity |].
  destruct (code_points_ascii units Ha) as [-> _]. now apply utf8_fitting_ascii.
Qed.

(** The count of converted characters is returned through a byte (LitStrings) *)
Definition utf8_count (bytes : list Z) : Z := if zlength (cesu8_encode units) =? zlength units then zlength bytes else zlength bytes mod 256.

Lemma not_number r : special T (cesu8_encode units) = r -> (forall n, r <> Some (UINT n)) -> number_of (cesu8_encode units) = None.
Proof.
  intros Hs Hr. destruct (number_of (cesu8_encode units)) as [n |] eqn:En; [| reflexivity]. exfalso. apply (Hr n). rewrite <- Hs. now apply special_number.
Qed.

Lemma nonneg_min {A} (l : list A) buffer_size : 0 <= buffer_size -> Z.min (zlength l) buffer_size = Z.min buffer_size (zlength l).
Proof. lia. Qed.

(** The branch for characters *)
Lemma characters_spec buffer_size : 0 <= buffer_size ->
  match (if Z.min (zlength (cesu8_encode units)) buffer_size <? zlength (cesu8_encode units)
         then whole_characters (cesu8_encode units) (Z.to_nat (Z.min (zlength (cesu8_encode units)) buffer_size))
         else Some (Z.min (zlength (cesu8_encode units)) buffer_size)) with
  | Some copy_size => Some (firstn (Z.to_nat copy_size) (cesu8_encode units), zlength (firstn (Z.to_nat copy_size) (cesu8_encode units)))
  | None => None
  end = Some (cesu8_encode (units_fitting buffer_size units), zlength (cesu8_encode (units_fitting buffer_size units)))
  /\ let result := utf8_fitting buffer_size (code_points units) in
     (if zlength (cesu8_encode units) =? zlength units
      then Some (firstn (Z.to_nat (Z.min (zlength (cesu8_encode units)) buffer_size)) (cesu8_encode units),
                 zlength (firstn (Z.to_nat (Z.min (zlength (cesu8_encode units)) buffer_size)) (cesu8_encode units)))
      else lit_convert_cesu8_string_to_utf8_string (cesu8_encode units) buffer_size) = Some (result, utf8_count result).
Proof.
  intros Hb. split.
  - destruct (Z.ltb_spec (Z.min (zlength (cesu8_encode units)) buffer_size) (zlength (cesu8_encode units))).
    + rewrite Z.min_r by lia. rewrite whole_characters_spec, Z2Nat.id by (assumption || lia). now rewrite first_fitting.
    + rewrite Z.min_l by lia. rewrite fitting_all by (assumption || lia). unfold zlength. now rewrite Nat2Z.id, firstn_all.
  - cbv zeta. unfold utf8_count. destruct (Z.eqb_spec (zlength (cesu8_encode units)) (zlength units)) as [E | _].
    + destruct (encode_same_length units Hu E) as [-> Ha]. destruct (code_points_ascii units Ha) as [-> _].
      rewrite nonneg_min, first_min, utf8_fitting_ascii by assumption. reflexivity.
    + unfold lit_convert_cesu8_string_to_utf8_string. rewrite cesu8_to_utf8_spec by (assumption || lia).
      cbn [app option_map]. now rewrite (@zlength_nil Z), Z.sub_0_r.
Qed.

Lemma copy_spec buffer_size : 0 <= buffer_size ->
  ecma_string_copy_to_buffer T m p buffer_size JJS_ENCODING_CESU8 = Some (cesu8_encode (units_fitting buffer_size units), zlength (cesu8_encode (units_fitting buffer_size units)))
  /\ let result := utf8_fitting buffer_size (code_points units) in ecma_string_copy_to_buffer T m p buffer_size JJS_ENCODING_UTF8 = Some (result, utf8_count result).
Proof.
  intros Hb. unfold ecma_string_copy_to_buffer. rewrite length_spec. cbv zeta.
  assert (Hint : forall n, is_u32 n -> cesu8_encode units = decimal n ->
    ecma_uint32_to_buffer n buffer_size = Some (cesu8_encode (units_fitting buffer_size units)) /\ utf8_fitting buffer_size (code_points units) = cesu8_encode (units_fitting buffer_size units)
    /\ forall r, utf8_count r = zlength r).
  { intros n Hn E. destruct (uint32_buffer_spec n buffer_size Hn E Hb) as [H1 H2]. splits; try assumption. intros r. unfold utf8_count.
    destruct ascii_units as [-> _]; [rewrite E; now apply decimal_ascii |]. now rewrite Z.eqb_refl. }
  pose proof (characters_spec buffer_size Hb) as Hchars.
  destruct (string_view T HT HD m p _ Hp) as [id E Hid Hs Hm Ha | id E Hid Hmax Hs Hm | n E Hn Hs Hm | n x Hbl Hx Hd Hn Hmax Hs Hm | x Hbl Hx Hh Hs].
  - direct_word E ECMA_DIRECT_STRING_MAGIC (ids_direct T HT id Hid). change (ECMA_DIRECT_STRING_UINT =? ECMA_DIRECT_STRING_MAGIC) with false. cbv iota.
    rewrite get_chars_fast_spec by (eapply not_number; [exact Hs | discriminate]). exact Hchars.
  - direct_word E ECMA_DIRECT_STRING_MAGIC (ex_id id Hid Hmax). change (ECMA_DIRECT_STRING_UINT =? ECMA_DIRECT_STRING_MAGIC) with false. cbv iota.
    rewrite get_chars_fast_spec by (eapply not_number; [exact Hs | discriminate]). exact Hchars.
  - direct_word E ECMA_DIRECT_STRING_UINT Hn. rewrite Z.eqb_refl. destruct (Hint n (uint_range n Hn) Hm) as (-> & -> & ->). now split.
  - rewrite block_not_direct, Hx by exact Hbl. destruct Hd as (_ & -> & ->). rewrite Z.eqb_refl. destruct (Hint n Hn Hm) as (-> & -> & ->). now split.
  - rewrite block_not_direct, Hx, get_chars_fast_spec by (exact Hbl || (eapply not_number; [exact Hs | discriminate])).
    replace (ECMA_STRING_GET_CONTAINER x =? ECMA_STRING_CONTAINER_UINT32_IN_DESC) with false; [exact Hchars |].
    pose proof (heap_fields x units Hu Hh) as Hf. destruct (data x); try contradiction; destruct Hf as (-> & _); reflexivity.
Qed.

Lemma cesu8_bytes_spec : ecma_string_to_cesu8_bytes T m p (zlength (cesu8_encode units)) = Some (cesu8_encode units).
Proof.
  unfold ecma_string_to_cesu8_bytes. rewrite (proj1 (copy_spec _ (zlength_nonneg _))). cbn [option_map fst]. now rewrite fitting_all by (assumption || lia).
Qed.

(** Characters for a computation: the flags say whether the characters are the
    digits of an integer, and whether the hash has to be computed *)
Lemma get_chars_spec flags : flags = ECMA_STRING_FLAG_EMPTY \/ flags = ECMA_STRING_FLAG_IS_ASCII ->
  exists length flags', ecma_string_get_chars T m p flags = Some (cesu8_encode units, length, flags')
    /\ (flags = ECMA_STRING_FLAG_IS_ASCII -> length = zlength units)
    /\ (Z.land flags' ECMA_STRING_FLAG_IS_UINT32 = 0 <-> number_of (cesu8_encode units) = None)
    /\ (Z.land flags' ECMA_STRING_FLAG_REHASH_NEEDED = 0 -> ecma_string_hash m p = Some (lit_utf8_string_calc_hash (cesu8_encode units)) /\ is_block p).
Proof.
  intros Hflags.
  (* the last step may clear the bit of the ASCII check, which the statement does not mention *)
  assert (Hlast : forall length fl, (flags = ECMA_STRING_FLAG_IS_ASCII -> length = zlength units) ->
    (Z.land fl ECMA_STRING_FLAG_IS_UINT32 = 0 <-> number_of (cesu8_encode units) = None) ->
    (Z.land fl ECMA_STRING_FLAG_REHASH_NEEDED = 0 -> ecma_string_hash m p = Some (lit_utf8_string_calc_hash (cesu8_encode units)) /\ is_block p) ->
    exists length' flags', Some (cesu8_encode units, length, if negb (Z.land fl ECMA_STRING_FLAG_IS_ASCII =? 0) && negb (length =? zlength (cesu8_encode units)) then Z.land fl 254 else fl)
        = Some (cesu8_encode units, length', flags')
      /\ (flags = ECMA_STRING_FLAG_IS_ASCII -> length' = zlength units)
      /\ (Z.land flags' ECMA_STRING_FLAG_IS_UINT32 = 0 <-> number_of (cesu8_encode units) = None)
      /\ (Z.land flags' ECMA_STRING_FLAG_REHASH_NEEDED = 0 -> ecma_string_hash m p = Some (lit_utf8_string_calc_hash (cesu8_encode units)) /\ is_block p)).
  { intros length fl H1 H2 H3. eexists _, _. split; [reflexivity |]. split; [exact H1 |].
    destruct (negb (Z.land fl ECMA_STRING_FLAG_IS_ASCII =? 0) && negb (length =? zlength (cesu8_encode units))); [| now split].
    rewrite <- !Z.land_assoc. change (Z.land 254 ECMA_STRING_FLAG_IS_UINT32) with ECMA_STRING_FLAG_IS_UINT32.
    change (Z.land 254 ECMA_STRING_FLAG_REHASH_NEEDED) with ECMA_STRING_FLAG_REHASH_NEEDED. now split. }
  assert (Hnum : forall r, special T (cesu8_encode units) = r -> (forall n, r <> Some (UINT n)) -> number_of (cesu8_encode units) = None) by exact not_number.
  assert (Hsome : forall n, special T (cesu8_encode units) = Some (UINT n) -> number_of (cesu8_encode units) <> None).
  { intros n Hs. apply (special_number T HT) in Hs. congruence. }
  pose proof string_hash_value as Hhash. unfold hash_value in Hhash.
  unfold ecma_string_get_chars, uint32_chars, magic_ex_length.
  destruct (string_view T HT HD m p _ Hp) as [id E Hid Hs Hm Ha | id E Hid Hmax Hs Hm | n E Hn Hs Hm | n x Hb Hx Hd Hn Hmax Hs Hm | x Hb Hx Hh Hs].
  - direct_word E ECMA_DIRECT_STRING_MAGIC (ids_direct T HT id Hid). change (ECMA_DIRECT_STRING_MAGIC =? ECMA_DIRECT_STRING_MAGIC) with true. cbv iota zeta.
    destruct (Z.leb_spec (LIT_MAGIC_STRING__COUNT T) id); [lia |]. rewrite Hm. apply Hlast.
    + intros _. now destruct (ascii_units Ha) as [-> _].
    + split; [intros _; now apply (Hnum _ Hs) | intros _; now destruct Hflags as [-> | ->]].
    + now destruct Hflags as [-> | ->].
  - direct_word E ECMA_DIRECT_STRING_MAGIC (ex_id id Hid Hmax). change (ECMA_DIRECT_STRING_MAGIC =? ECMA_DIRECT_STRING_MAGIC) with true. cbv iota zeta.
    destruct (Z.leb_spec (LIT_MAGIC_STRING__COUNT T) (LIT_MAGIC_STRING__COUNT T + id)); [| lia]. rewrite Z.add_simpl_l, Hm.
    destruct Hflags as [-> | ->]; [change (negb (Z.land (Z.lor ECMA_STRING_FLAG_EMPTY ECMA_STRING_FLAG_REHASH_NEEDED) ECMA_STRING_FLAG_IS_ASCII =? 0)) with false
      | change (negb (Z.land (Z.lor ECMA_STRING_FLAG_IS_ASCII ECMA_STRING_FLAG_REHASH_NEEDED) ECMA_STRING_FLAG_IS_ASCII =? 0)) with true; rewrite text_length by exact Hu];
      cbv iota; apply Hlast; try easy; split; intros _; try reflexivity; now apply (Hnum _ Hs).
  - direct_word E ECMA_DIRECT_STRING_UINT Hn. change (ECMA_DIRECT_STRING_UINT =? ECMA_DIRECT_STRING_MAGIC) with false. cbv iota zeta. pose proof (uint_range n Hn) as Hn'.
    destruct (decimal_spec n Hn') as (_ & _ & He). rewrite uint32_size_spec, He, <- Hm by (assumption || lia). apply Hlast.
    + intros _. apply ascii_size_chars. rewrite Hm. now apply decimal_ascii.
    + split; [destruct Hflags as [-> | ->]; discriminate | intros H; now destruct (Hsome n Hs)].
    + destruct Hflags as [-> | ->]; discriminate.
  - rewrite block_not_direct, Hx by exact Hb. destruct Hd as (_ & -> & ->). cbn [Z.eqb ECMA_STRING_CONTAINER_UINT32_IN_DESC ECMA_STRING_CONTAINER_HEAP_UTF8_STRING ECMA_STRING_CONTAINER_LONG_OR_EXTERNAL_STRING ECMA_STRING_CONTAINER_HEAP_ASCII_STRING].
    change (2 =? 1)%positive with false. change (2 =? 3)%positive with false. change (2 =? 2)%positive with true. cbv iota zeta.
    destruct (decimal_spec n Hn) as (_ & _ & He). rewrite uint32_size_spec, He, <- Hm by (assumption || lia). apply Hlast.
    + intros _. apply ascii_size_chars. rewrite Hm. now apply decimal_ascii.
    + split; [destruct Hflags as [-> | ->]; discriminate | intros H; now destruct (Hsome n Hs)].
    + destruct Hflags as [-> | ->]; discriminate.
  - rewrite block_not_direct, Hx by exact Hb. rewrite Hs in Hhash. pose proof (heap_fields x units Hu Hh) as Hf.
    assert (Hfinal : forall length, length = zlength units -> exists length' flags',
      Some (cesu8_encode units, length, if negb (Z.land flags ECMA_STRING_FLAG_IS_ASCII =? 0) && negb (length =? zlength (cesu8_encode units)) then Z.land flags 254 else flags)
        = Some (cesu8_encode units, length', flags')
      /\ (flags = ECMA_STRING_FLAG_IS_ASCII -> length' = zlength units)
      /\ (Z.land flags' ECMA_STRING_FLAG_IS_UINT32 = 0 <-> number_of (cesu8_encode units) = None)
      /\ (Z.land flags' ECMA_STRING_FLAG_REHASH_NEEDED = 0 -> ecma_string_hash m p = Some (lit_utf8_string_calc_hash (cesu8_encode units)) /\ is_block p)).
    { intros length Hl. apply Hlast; [now intros _ | split; [intros _; now apply (Hnum _ Hs) | intros _; now destruct Hflags as [-> | ->]] | now intros _]. }
    destruct (data x) as [| size_field buffer | size len buffer | size len buffer | size len buffer user | d]; try contradiction.
    + destruct Hf as (-> & -> & -> & Hl & _). change (ECMA_STRING_CONTAINER_HEAP_ASCII_STRING) with 3. cbn -[bytes_at Z.land zlength]. rewrite bytes_at_all. cbn [option_map]. now apply Hfinal.
    + destruct Hf as (-> & -> & -> & ->). cbn -[bytes_at Z.land zlength]. rewrite bytes_at_all. cbn [option_map]. now apply Hfinal.
    + destruct Hf as (-> & -> & -> & ->). cbn -[bytes_at Z.land zlength]. rewrite bytes_at_all. cbn [option_map]. now apply Hfinal.
    + destruct Hf as (-> & -> & -> & ->). cbn -[bytes_at Z.land zlength]. rewrite bytes_at_all. cbn [option_map]. now apply Hfinal.
Qed.
End Access.

(** ** Comparison *)

Section Compare.
Context (T : magic_tables) (HT : tables_ok T) (HD : tables_direct T) (m : memory).

Lemma lor_odd a b : ECMA_IS_DIRECT_STRING (Z.lor a b) = ECMA_IS_DIRECT_STRING a || ECMA_IS_DIRECT_STRING b.
Proof.
  assert (Hbit : forall z, ECMA_IS_DIRECT_STRING z = Z.testbit z 0).
  { intros z. unfold ECMA_IS_DIRECT_STRING. change 1 with (Z.ones 1). rewrite Z.land_ones by lia. change (2 ^ 1) with 2.
    rewrite Z.bit0_odd, Zmod_odd. now destruct (Z.odd z). }
  rewrite !Hbit. apply Z.lor_spec.
Qed.

(** The representation decides whether a string is direct *)
Lemma string_direct p s : string_is T m p s ->
  (ECMA_IS_DIRECT_STRING p = true /\ exists r, special T s = Some r /\ forall q t, string_is T m q t -> special T t = Some r -> q = p)
  \/ (ECMA_IS_DIRECT_STRING p = false /\ exists x, string_at m p = Some x
      /\ ((exists n, special T s = Some (UINT n) /\ ECMA_DIRECT_STRING_MAX_IMM < n /\ uint32_descriptor x n) \/ (special T s = None /\ heap_string x s))).
Proof.
  intros Hs. destruct (string_view T HT HD m p s Hs) as [id E Hid Hr Hm Ha | id E Hid Hmax Hr Hm | n E Hn Hr Hm | n x Hb Hx Hd Hn Hmax Hr Hm | x Hb Hx Hh Hr].
  - left. split; [rewrite E; apply direct_fields; [unfold ECMA_DIRECT_STRING_MAGIC; lia | now apply (ids_direct T HT)] |].
    exists (MAGIC id). split; [exact Hr |]. intros q t (_ & _ & Hq) Ht. rewrite Ht in Hq. congruence.
  - left. split; [rewrite E; apply direct_fields; [unfold ECMA_DIRECT_STRING_MAGIC; lia | now apply (ex_id T HT)] |].
    exists (MAGIC_EX id). split; [exact Hr |]. intros q t (_ & _ & Hq) Ht. rewrite Ht in Hq. congruence.
  - left. split; [rewrite E; apply direct_fields; [unfold ECMA_DIRECT_STRING_UINT; lia | exact Hn] |].
    exists (UINT n). split; [exact Hr |]. intros q t (_ & _ & Hq) Ht. rewrite Ht in Hq. destruct (Z.leb_spec n ECMA_DIRECT_STRING_MAX_IMM); [congruence | lia].
  - right. split; [now apply block_not_direct |]. exists x. split; [exact Hx |]. left. exists n. now splits.
  - right. split; [now apply block_not_direct |]. exists x. split; [exact Hx |]. right. now split.
Qed.

Lemma longpath_spec x y a b : Forall is_u16 a -> Forall is_u16 b -> heap_string x (cesu8_encode a) -> heap_string y (cesu8_encode b) ->
  ecma_compare_ecma_strings_longpath x y = Some (bool_decide (cesu8_encode a = cesu8_encode b)).
Proof.
  intros Ha Hb Hx Hy. pose proof (heap_fields x a Ha Hx) as Fx. pose proof (heap_fields y b Hb Hy) as Fy.
  assert (Hget : forall z c, Forall is_u16 c -> heap_string z (cesu8_encode c) ->
    ecma_compare_get_string_chars z = Some (Some (zlength (cesu8_encode c), zlength c, cesu8_encode c))).
  { intros z c Hc Hz. pose proof (heap_fields z c Hc Hz) as Fz. unfold ecma_compare_get_string_chars. destruct (data z); try contradiction.
    - destruct Fz as (-> & -> & -> & Hl & _). cbn -[zlength]. now rewrite Hl at 2.
    - destruct Fz as (-> & -> & -> & ->). reflexivity.
    - destruct Fz as (-> & -> & -> & ->). reflexivity.
    - destruct Fz as (-> & -> & -> & ->). reflexivity. }
  unfold ecma_compare_ecma_strings_longpath. rewrite (Hget x a Ha Hx), (Hget y b Hb Hy). clear Hget Fx Fy.
  destruct Hx as (_ & Nx & _), Hy as (_ & Ny & _). set (s := cesu8_encode a) in *. set (t := cesu8_encode b) in *.
  destruct (Z.eqb_spec (zlength s) (zlength t)) as [E | E]; cbn [negb orb].
  2:{ rewrite bool_decide_eq_false_2; [reflexivity | congruence]. }
  destruct (Z.eqb_spec (zlength a) (zlength b)) as [E' | E']; cbn [negb].
  2:{ rewrite bool_decide_eq_false_2; [reflexivity |]. intros Est. apply E'. f_equal. apply encode_inj; assumption. }
  destruct s as [| c s]; [easy |]. destruct t as [| d t]; [easy |]. destruct (Z.eqb_spec c d) as [-> | Hcd].
  - unfold zlength in *. rewrite E, Nat2Z.id. rewrite memcmp_lex by lia. cbn [option_map]. f_equal.
    destruct (Z.eqb_spec 0 (lex (d :: s) (d :: t))) as [E0 | E0].
    + symmetry in E0. apply lex_eq in E0. now rewrite bool_decide_eq_true_2.
    + rewrite bool_decide_eq_false_2; [reflexivity |]. intros Est. apply E0. symmetry. now apply lex_eq.
  - rewrite bool_decide_eq_false_2; [reflexivity | congruence].
Qed.

(** The blocks of two different words *)
Lemma compare_blocks p q s t x y : string_is T m p s -> string_is T m q t -> string_at m p = Some x -> string_at m q = Some y ->
  ((exists n, special T s = Some (UINT n) /\ ECMA_DIRECT_STRING_MAX_IMM < n /\ uint32_descriptor x n) \/ (special T s = None /\ heap_string x s)) ->
  ((exists n, special T t = Some (UINT n) /\ ECMA_DIRECT_STRING_MAX_IMM < n /\ uint32_descriptor y n) \/ (special T t = None /\ heap_string y t)) ->
  (if negb (u x =? u y) then Some false
   else if ECMA_STRING_GET_CONTAINER x =? ECMA_STRING_CONTAINER_UINT32_IN_DESC then Some (ECMA_STRING_GET_CONTAINER y =? ECMA_STRING_CONTAINER_UINT32_IN_DESC)
   else ecma_compare_ecma_strings_longpath x y) = Some (bool_decide (s = t)).
Proof.
  intros Hs Ht _ _ Hx Hy. destruct Hs as ((a & Ha & ->) & _ & _), Ht as ((b & Hb & ->) & _ & _).
  assert (Hcont : forall z c, Forall is_u16 c -> heap_string z (cesu8_encode c) -> (ECMA_STRING_GET_CONTAINER z =? ECMA_STRING_CONTAINER_UINT32_IN_DESC) = false).
  { intros z c Hc Hz. pose proof (heap_fields z c Hc Hz) as Fz. destruct (data z); try contradiction; now destruct Fz as (-> & _). }
  destruct Hx as [(n & Hn & _ & Dx & Cx & Ux) | [Hn Hx]], Hy as [(k & Hk & _ & Dy & Cy & Uy) | [Hk Hy]].
  - rewrite Ux, Uy, Cx, Cy. destruct (Z.eqb_spec n k) as [<- | Hne]; cbn [negb].
    + pose proof (special_inj T HT _ _ _ Hn Hk) as ->. now rewrite bool_decide_eq_true_2.
    + rewrite bool_decide_eq_false_2; [reflexivity |]. intros E. rewrite E in Hn. congruence.
  - rewrite bool_decide_eq_false_2 by (intros E; rewrite E in Hn; congruence). destruct (negb _); [reflexivity |]. rewrite Cx, (Hcont y b Hb Hy). reflexivity.
  - rewrite bool_decide_eq_false_2 by (intros E; rewrite E in Hn; congruence). destruct (negb _); [reflexivity |]. rewrite (Hcont x a Ha Hx).
    unfold ecma_compare_ecma_strings_longpath. assert (ecma_compare_get_string_chars y = Some None) as -> by (unfold ecma_compare_get_string_chars; now rewrite Cy).
    pose proof (heap_fields x a Ha Hx) as Fx. unfold ecma_compare_get_string_chars. destruct (data x); try contradiction; now destruct Fx as (-> & _).
  - rewrite (Hcont x a Ha Hx), (longpath_spec x y a b) by assumption. destruct Hx as (-> & _), Hy as (-> & _).
    destruct (Z.eqb_spec (lit_utf8_string_calc_hash (cesu8_encode a)) (lit_utf8_string_calc_hash (cesu8_encode b))) as [| E]; [reflexivity |]. cbn [negb].
    rewrite bool_decide_eq_false_2; [reflexivity |]. intros E'. now rewrite E' in E.
Qed.

Lemma compare_spec p q s t : string_is T m p s -> string_is T m q t -> ecma_compare_ecma_strings m p q = Some (bool_decide (s = t)).
Proof.
  intros Hs Ht. unfold ecma_compare_ecma_strings. destruct (Z.eqb_spec p q) as [<- | Hpq].
  - rewrite bool_decide_eq_true_2; [reflexivity |]. destruct (proj1 Hs) as (a & Ha & ->), (proj1 Ht) as (b & Hb & ->).
    assert (Some (cesu8_encode a) = Some (cesu8_encode b)) as E; [| congruence].
    rewrite <- (chars_spec T HT HD m p a Ha), <- (chars_spec T HT HD m p b Hb); [reflexivity | exact Ht | exact Hs].
  - rewrite lor_odd. destruct (string_direct p s Hs) as [(-> & r & Hr & Hu) | (-> & x & Hx & Cx)]; cbn [orb].
    { rewrite bool_decide_eq_false_2; [reflexivity |]. intros <-. apply Hpq. symmetry. eapply Hu; eassumption. }
    destruct (string_direct q t Ht) as [(-> & r & Hr & Hu) | (-> & y & Hy & Cy)].
    { rewrite bool_decide_eq_false_2; [reflexivity |]. intros <-. apply Hpq. eapply Hu; eassumption. }
    rewrite Hx, Hy. eapply compare_blocks; eassumption.
Qed.

Lemma compare_non_direct_spec p q s t : string_is T m p s -> string_is T m q t -> ECMA_IS_DIRECT_STRING p = false -> ECMA_IS_DIRECT_STRING q = false ->
  ecma_compare_ecma_non_direct_strings m p q = Some (bool_decide (s = t)).
Proof.
  intros Hs Ht Hp Hq. pose proof (compare_spec p q s t Hs Ht) as H. unfold ecma_compare_ecma_strings in H. rewrite lor_odd, Hp, Hq in H. exact H.
Qed.

Lemma units_lt_irrefl a : units_lt a a = false.
Proof. induction a as [| x a IH]; [reflexivity |]. cbn. now rewrite Z.ltb_irrefl, Z.eqb_refl, IH. Qed.

Lemma relational_spec p q a b : Forall is_u16 a -> Forall is_u16 b -> string_is T m p (cesu8_encode a) -> string_is T m q (cesu8_encode b) ->
  ecma_compare_ecma_strings_relational T m p q = Some (units_lt a b).
Proof.
  intros Ha Hb Hp Hq. unfold ecma_compare_ecma_strings_relational. rewrite (compare_spec p q _ _ Hp Hq). case_bool_decide as E.
  - apply encode_inj in E as <-; [| assumption ..]. now rewrite units_lt_irrefl.
  - rewrite (chars_spec T HT HD m p a), (chars_spec T HT HD m q b) by assumption. unfold lit_compare_utf8_strings_relational.
    apply compare_encode; [assumption .. | apply encode_length_ge].
Qed.
End Compare.

(** ** Properties *)

(** C23: access: for every representation of a string with the code units [units]
    the engine computes their number, the sizes and lengths in both encodings,
    each code unit, the array index the string is, and copies the characters that
    fit into a buffer, whole characters only; into a buffer of the right size it
    copies all of them. *)
Theorem ecma_string_access_correct T m p units : tables_ok T -> tables_direct T -> Forall is_u16 units -> string_is T m p (cesu8_encode units) ->
  ecma_string_get_length T m p = Some (zlength units)
  /\ ecma_string_get_size T m p = Some (zlength (cesu8_encode units))
  /\ ecma_string_get_utf8_length T m p = Some (zlength (code_points units))
  /\ ecma_string_get_utf8_size T m p = Some (zlength (utf8_encode (code_points units)))
  /\ (forall index, 0 <= index < zlength units -> ecma_string_get_char_at_pos T m p index = nth_error units (Z.to_nat index))
  /\ ecma_string_get_array_index m p = Some (match number_of (cesu8_encode units) with Some n => n | None => ECMA_STRING_NOT_ARRAY_INDEX end)
  /\ ecma_string_to_cesu8_bytes T m p (zlength (cesu8_encode units)) = Some (cesu8_encode units)
  /\ (forall buffer_size, 0 <= buffer_size ->
      ecma_string_copy_to_buffer T m p buffer_size JJS_ENCODING_CESU8
        = Some (cesu8_encode (units_fitting buffer_size units), zlength (cesu8_encode (units_fitting buffer_size units)))
      /\ option_map fst (ecma_string_copy_to_buffer T m p buffer_size JJS_ENCODING_UTF8) = Some (utf8_fitting buffer_size (code_points units))).
Proof.
  intros HT HD Hu Hp. splits.
  - now apply (length_spec T HT HD).
  - now apply (size_spec T HT HD).
  - now apply (utf8_length_spec T HT HD).
  - now apply (string_utf8_size_spec T HT HD).
  - intros index Hi. rewrite <- unit_at by exact Hi. now apply (char_at_spec T HT HD).
  - rewrite (array_index_value T HT HD m p units Hu Hp). destruct (number_of (cesu8_encode units)) as [n |] eqn:En.
    + apply (special_number T HT) in En. now rewrite En.
    + destruct (special T (cesu8_encode units)) as [[id | n | id] |] eqn:Es; try reflexivity. apply (special_number T HT) in Es. congruence.
  - now apply (cesu8_bytes_spec T HT HD).
  - intros buffer_size Hb. destruct (copy_spec T HT HD m p units Hu Hp buffer_size Hb) as [H1 H2]. split; [exact H1 |]. cbv zeta in H2. now rewrite H2.
Qed.

(** C24: comparison: two strings are equal for the engine exactly when their
    characters are, and the relational comparison is the lexicographic order of
    the code units; the hash word is the number of a special string or the hash of
    the characters, and equal strings have equal hash words. *)
Theorem ecma_string_compare_correct T m p q a b : tables_ok T -> tables_direct T -> Forall is_u16 a -> Forall is_u16 b ->
  string_is T m p (cesu8_encode a) -> string_is T m q (cesu8_encode b) ->
  ecma_compare_ecma_strings m p q = Some (bool_decide (a = b))
  /\ (ECMA_IS_DIRECT_STRING p = false -> ECMA_IS_DIRECT_STRING q = false -> ecma_compare_ecma_non_direct_strings m p q = Some (bool_decide (a = b)))
  /\ ecma_compare_ecma_strings_relational T m p q = Some (units_lt a b)
  /\ ecma_string_hash m p = Some (hash_value T (cesu8_encode a))
  /\ (a = b -> ecma_string_hash m p = ecma_string_hash m q).
Proof.
  intros HT HD Ha Hb Hp Hq. assert (E : bool_decide (cesu8_encode a = cesu8_encode b) = bool_decide (a = b)) by (apply bool_decide_ext; split; [now apply encode_inj | now intros ->]).
  rewrite <- E. splits.
  - now apply (compare_spec T HT HD).
  - intros Dp Dq. now apply (compare_non_direct_spec T HT HD).
  - now apply (relational_spec T HT HD).
  - now apply (string_hash_value T HT HD).
  - intros <-. now rewrite (string_hash_value T HT HD m p a Hp), (string_hash_value T HT HD m q a Hq).
Qed.

Lemma default_direct : tables_direct default_tables.
Proof. now vm_compute. Qed.

Lemma example_seven (m : memory) : string_is default_tables m (ecma_get_ecma_string_from_uint32 7) [55].
Proof.
  assert (Ha : Forall is_ascii [55]) by (repeat constructor; unfold is_ascii; lia). split; [now apply text_ascii |]. split; [now vm_compute |].
  assert (special default_tables [55] = Some (UINT 7)) as -> by now vm_compute. reflexivity.
Qed.

(** "7" *)
Lemma ecma_string_access_witness : let p := ecma_get_ecma_string_from_uint32 7 in
  ecma_string_get_length default_tables ∅ p = Some 1 /\ ecma_string_get_char_at_pos default_tables ∅ p 0 = Some 55 /\ ecma_string_get_array_index ∅ p = Some 7.
Proof.
  cbv zeta. destruct (ecma_string_access_correct default_tables ∅ (ecma_get_ecma_string_from_uint32 7) [55] default_tables_ok default_direct
    ltac:(repeat constructor; cbv; discriminate) (example_seven ∅)) as (H1 & _ & _ & _ & H5 & H6 & _).
  split; [exact H1 |]. split; [apply (H5 0); split; now vm_compute | now vm_compute].
Defined.

Lemma ecma_string_compare_witness : let p := ecma_get_ecma_string_from_uint32 7 in
  ecma_compare_ecma_strings ∅ p p = Some true /\ ecma_compare_ecma_strings_relational default_tables ∅ p p = Some false.
Proof.
  cbv zeta. destruct (ecma_string_compare_correct default_tables ∅ (ecma_get_ecma_string_from_uint32 7) (ecma_get_ecma_string_from_uint32 7) [55] [55] default_tables_ok default_direct
    ltac:(repeat constructor; cbv; discriminate) ltac:(repeat constructor; cbv; discriminate) (example_seven ∅) (example_seven ∅)) as (H1 & _ & H3 & _).
  split; [exact H1 | exact H3].
Defined.
