(* ===== verification/Ownership.v ===== *)
(** * References: src/jjs-core/ecma/base/ecma-helpers-value.c, ecma-helpers-string.c, ecma-helpers.c, ecma-gc.c

    Blocks of strings, of large numbers and of exceptions count the references
    to them and are released with the last one; a number has one owner; objects
    are counted, but released by the garbage collector.  The functions that
    take and drop references are here, for all kinds of values.  The build is
    the release build (JJS_NDEBUG), in which static strings are not counted. *)
From Stdlib Require Import ZArith Lia Bool List.
From stdpp Require Import base gmap list.
From S2P Require Import Prelude JmemHeap JmemPointers Values BlockHeap StringData.
Import ListNotations.
#[local] Open Scope Z_scope.

Definition ECMA_EXTENDED_PRIMITIVE_REF_ONE : Z := 8.
Definition ECMA_EXTENDED_PRIMITIVE_MAX_REF : Z := 4294967288.
Definition ECMA_OBJECT_REF_ONE : Z := 32.
Definition ECMA_OBJECT_MAX_REF : Z := 4294967232.

Section Operations.
Context {BH : BlockHeap}.
(** Whether the embedder registered external_string_free_callback_p *)
Context (external_string_free_callback : bool).

(** ** Blocks (ecma-alloc.c, without statistics) *)

Definition ecma_alloc_number : W content Z := jmem_heap_alloc_block sizeof_ecma_number_t.
Definition ecma_dealloc_number (number_p : Z) : W content unit := jmem_heap_free_block number_p sizeof_ecma_number_t.
Definition ecma_alloc_string : W content Z := jmem_heap_alloc_block sizeof_ecma_string_t.
Definition ecma_dealloc_string (string_p : Z) : W content unit := jmem_heap_free_block string_p sizeof_ecma_string_t.
Definition ecma_alloc_extended_string : W content Z := jmem_heap_alloc_block sizeof_ecma_extended_string_t.
Definition ecma_dealloc_extended_string (ext_string_p : Z) : W content unit := jmem_heap_free_block ext_string_p sizeof_ecma_extended_string_t.
Definition ecma_alloc_external_string : W content Z := jmem_heap_alloc_block sizeof_ecma_external_string_t.
Definition ecma_dealloc_external_string (ext_string_p : Z) : W content unit := jmem_heap_free_block ext_string_p sizeof_ecma_external_string_t.
Definition ecma_alloc_string_buffer (size : Z) : W content Z := jmem_heap_alloc_block size.
Definition ecma_dealloc_string_buffer (string_p size : Z) : W content unit := jmem_heap_free_block string_p size.

Definition read_string (p : Z) : W content ecma_string_t := reading (fun m => string_at m p).
Definition write_string (p : Z) (x : ecma_string_t) : W content unit := write_block p (BLOCK_STRING x).
Definition read_number (p : Z) : W content Z := reading (fun m => match block_at m p with Some (BLOCK_NUMBER n) => Some n | _ => None end).
Definition with_refs (x : ecma_string_t) (refs : Z) : ecma_string_t := mk_string refs (u x) (data x).

(** ** Strings *)

Definition ecma_ref_ecma_string_non_direct (string_p : Z) : W content unit :=
  x ← read_string string_p;
  if ECMA_STRING_IS_STATIC x then mret tt
  else if refs_and_container x <? ECMA_STRING_MAX_REF then write_string string_p (with_refs x (u32 (refs_and_container x + ECMA_STRING_REF_ONE)))
  else fatal.

Definition ecma_ref_ecma_string (string_p : Z) : W content unit :=
  if ECMA_IS_DIRECT_STRING string_p then mret tt else ecma_ref_ecma_string_non_direct string_p.

(** The description of a symbol is a value; [ecma_free_value] is below *)
Section Release.
Context (ecma_free_value : Z -> W content unit).

Definition ecma_destroy_ecma_string (string_p : Z) : W content unit :=
  x ← read_string string_p;
  let container := ECMA_STRING_GET_CONTAINER x in
  if container =? ECMA_STRING_CONTAINER_HEAP_UTF8_STRING then
    match data x with SHORT size _ _ => ecma_dealloc_string_buffer string_p (size + sizeof_ecma_short_string_t) | _ => fault end
  else if container =? ECMA_STRING_CONTAINER_LONG_OR_EXTERNAL_STRING then
    match data x with
    | LONG size _ _ => ecma_dealloc_string_buffer string_p (size + sizeof_ecma_long_string_t)
    | EXTERNAL _ _ string user =>
        _ ← (if external_string_free_callback then note (string, user) else mret tt);
        ecma_dealloc_external_string string_p
    | _ => fault
    end
  else if container =? ECMA_STRING_CONTAINER_HEAP_ASCII_STRING then
    match data x with ASCII size_field _ => ecma_dealloc_string_buffer string_p (ECMA_ASCII_STRING_GET_SIZE size_field + ECMA_ASCII_STRING_HEADER_SIZE) | _ => fault end
  else if container =? ECMA_STRING_CONTAINER_SYMBOL then
    match data x with
    | EXTENDED symbol_descriptor => _ ← ecma_free_value symbol_descriptor; ecma_dealloc_extended_string string_p
    | _ => fault
    end
  else ecma_dealloc_string string_p.

Definition ecma_deref_ecma_string_non_direct (string_p : Z) : W content unit :=
  x ← read_string string_p;
  if ECMA_STRING_IS_STATIC x then mret tt
  else
    let refs := u32 (refs_and_container x - ECMA_STRING_REF_ONE) in
    _ ← write_string string_p (with_refs x refs);
    if ECMA_STRING_REF_ONE <=? refs then mret tt else ecma_destroy_ecma_string string_p.
End Release.

(** ** Objects, large numbers and exceptions *)

Definition read_object (p : Z) : W content Z := reading (fun m => match block_at m p with Some (BLOCK_OBJECT refs) => Some refs | _ => None end).

Definition ecma_ref_object_inline (object_p : Z) : W content unit :=
  refs ← read_object object_p;
  if refs <? ECMA_OBJECT_MAX_REF then write_block object_p (BLOCK_OBJECT (u32 (refs + ECMA_OBJECT_REF_ONE))) else fatal.
Definition ecma_ref_object (object_p : Z) : W content unit := ecma_ref_object_inline object_p.
Definition ecma_deref_object (object_p : Z) : W content unit :=
  refs ← read_object object_p; write_block object_p (BLOCK_OBJECT (u32 (refs - ECMA_OBJECT_REF_ONE))).

(** The counter of large numbers and exceptions, and the block with another counter *)
Definition read_primitive (p : Z) : W content (Z * (Z -> content)) :=
  reading (fun m => match block_at m p with
                    | Some (BLOCK_EXCEPTION refs value) => Some (refs, fun refs => BLOCK_EXCEPTION refs value)
                    | Some (BLOCK_BIGINT refs sign_and_size digits) => Some (refs, fun refs => BLOCK_BIGINT refs sign_and_size digits)
                    | _ => None
                    end).

Definition ecma_ref_extended_primitive (primitve_p : Z) : W content unit :=
  '(refs, block) ← read_primitive primitve_p;
  if refs <? ECMA_EXTENDED_PRIMITIVE_MAX_REF then write_block primitve_p (block (u32 (refs + ECMA_EXTENDED_PRIMITIVE_REF_ONE))) else fatal.

(** The number of bytes of the digits, and of the block *)
Definition ECMA_BIGINT_GET_SIZE (bigint_sign_and_size : Z) : Z := Z.land bigint_sign_and_size 4294967292.
Definition ECMA_BIGINT_GET_BYTE_SIZE (size : Z) : Z := Z.land (size + 4) 18446744073709551608.

Definition ecma_deref_bigint (bigint_p : Z) : W content unit :=
  '(refs, block) ← read_primitive bigint_p;
  let refs := u32 (refs - ECMA_EXTENDED_PRIMITIVE_REF_ONE) in
  _ ← write_block bigint_p (block refs);
  if ECMA_EXTENDED_PRIMITIVE_REF_ONE <=? refs then mret tt
  else
    match block refs with
    | BLOCK_BIGINT _ sign_and_size _ =>
        jmem_heap_free_block bigint_p (ECMA_BIGINT_GET_BYTE_SIZE (ECMA_BIGINT_GET_SIZE sign_and_size) + sizeof_ecma_extended_primitive_t)
    | _ => fault
    end.

(** ** Values *)

(** Values are nested through the description of a symbol, which is a string or undefined *)
Fixpoint ecma_free_value (fuel : nat) (value : Z) : W content unit :=
  match fuel with
  | O => fault
  | S fuel =>
      let type := ecma_get_value_type_field value in
      if type =? ECMA_TYPE_FLOAT then ecma_dealloc_number (ecma_get_pointer_from_ecma_value value)
      else if (type =? ECMA_TYPE_SYMBOL) || (type =? ECMA_TYPE_STRING) then
        ecma_deref_ecma_string_non_direct (ecma_free_value fuel) (ecma_get_pointer_from_ecma_value value)
      else if type =? ECMA_TYPE_OBJECT then ecma_deref_object (ecma_get_object_from_value value)
      else if type =? ECMA_TYPE_BIGINT then
        if negb (value =? ECMA_BIGINT_ZERO) then ecma_deref_bigint (ecma_get_extended_primitive_from_value value) else mret tt
      else mret tt
  end.

Definition VALUE_DEPTH : nat := 2.

Definition ecma_deref_ecma_string (string_p : Z) : W content unit :=
  if ECMA_IS_DIRECT_STRING string_p then mret tt else ecma_deref_ecma_string_non_direct (ecma_free_value VALUE_DEPTH) string_p.

Definition ecma_fast_free_value (value : Z) : W content unit :=
  if negb (ecma_get_value_type_field value =? ECMA_TYPE_DIRECT) then ecma_free_value VALUE_DEPTH value else mret tt.

Definition ecma_free_value_if_not_object (value : Z) : W content unit :=
  if negb (ecma_get_value_type_field value =? ECMA_TYPE_OBJECT) then ecma_free_value VALUE_DEPTH value else mret tt.

Definition ecma_free_object (value : Z) : W content unit := ecma_deref_object (ecma_get_object_from_value value).

Definition ecma_deref_exception (error_ref_p : Z) : W content unit :=
  '(refs, block) ← read_primitive error_ref_p;
  let refs := u32 (refs - ECMA_EXTENDED_PRIMITIVE_REF_ONE) in
  _ ← write_block error_ref_p (block refs);
  if refs <? ECMA_EXTENDED_PRIMITIVE_REF_ONE then
    match block refs with
    | BLOCK_EXCEPTION _ value => _ ← ecma_free_value VALUE_DEPTH value; jmem_heap_free_block error_ref_p sizeof_ecma_extended_primitive_t
    | _ => fault
    end
  else mret tt.

Definition ecma_free_value_all (value : Z) : W content unit :=
  if ecma_get_value_type_field value =? ECMA_TYPE_ERROR then ecma_deref_exception (ecma_get_extended_primitive_from_value value)
  else ecma_free_value VALUE_DEPTH value.

Definition ecma_create_exception (value options : Z) : W content Z :=
  error_ref_p ← jmem_heap_alloc_block sizeof_ecma_extended_primitive_t;
  _ ← write_block error_ref_p (BLOCK_EXCEPTION (Z.lor ECMA_EXTENDED_PRIMITIVE_REF_ONE options) value);
  mret (ecma_make_extended_primitive_value error_ref_p ECMA_TYPE_ERROR).

Definition ecma_copy_value (value : Z) : W content Z :=
  let type := ecma_get_value_type_field value in
  if type =? ECMA_TYPE_FLOAT then
    num ← read_number (ecma_get_pointer_from_ecma_value value);
    new_num_p ← ecma_alloc_number;
    _ ← write_block new_num_p (BLOCK_NUMBER num);
    mret (ecma_make_float_value new_num_p)
  else if (type =? ECMA_TYPE_SYMBOL) || (type =? ECMA_TYPE_STRING) then
    _ ← ecma_ref_ecma_string_non_direct (ecma_get_pointer_from_ecma_value value); mret value
  else if type =? ECMA_TYPE_BIGINT then
    _ ← (if negb (value =? ECMA_BIGINT_ZERO) then ecma_ref_extended_primitive (ecma_get_extended_primitive_from_value value) else mret tt); mret value
  else if type =? ECMA_TYPE_OBJECT then
    _ ← ecma_ref_object_inline (ecma_get_object_from_value value); mret value
  else mret value.

Definition ecma_fast_copy_value (value : Z) : W content Z :=
  if ecma_get_value_type_field value =? ECMA_TYPE_DIRECT then mret value else ecma_copy_value value.
Definition ecma_copy_value_if_not_object (value : Z) : W content Z :=
  if negb (ecma_is_value_object value) then ecma_copy_value value else mret value.
Definition ecma_ref_if_object (value : Z) : W content unit :=
  if ecma_is_value_object value then ecma_ref_object (ecma_get_object_from_value value) else mret tt.
Definition ecma_deref_if_object (value : Z) : W content unit :=
  if ecma_is_value_object value then ecma_deref_object (ecma_get_object_from_value value) else mret tt.

(** Assignment to a slot that held [value_p]; the result is what the slot holds
    afterwards.  The first test is the code's: a logical or of the two words *)
Definition ecma_value_assign_value (value_p ecma_value : Z) : W content Z :=
  if value_p =? ecma_value then mret value_p
  else if ecma_get_value_type_field (if (ecma_value =? 0) && (value_p =? 0) then 0 else 1) =? ECMA_TYPE_DIRECT then mret ecma_value
  else if ecma_is_value_float_number ecma_value && ecma_is_value_float_number value_p then
    num ← read_number (ecma_get_pointer_from_ecma_value ecma_value);
    _ ← write_block (ecma_get_pointer_from_ecma_value value_p) (BLOCK_NUMBER num);
    mret value_p
  else
    _ ← ecma_free_value_if_not_object value_p;
    ecma_copy_value_if_not_object ecma_value.
End Operations.
