(* ===== verification/Counting.v ===== *)
(** * Reference counts are exact

    The program holds references to blocks: [held p] of them to the block [p].
    Blocks hold references too: a symbol to its description and an exception to
    its value.  In a [counted] memory the counter of every block is the number
    of the references to it.  Taking and dropping references keeps it so, drops
    the last one exactly when the block is released, with the size it was
    allocated with, and changes nothing else in the blocks that are still held. *)
From Stdlib Require Import ZArith Lia Bool List.
From stdpp Require Import base gmap list.
From S2P Require Import Prelude JmemHeap JmemPointers Values BlockHeap StringData Ownership.
Import ListNotations.
#[local] Open Scope Z_scope.

(** ** References *)

(** The block a value refers to *)
Definition value_target (v : Z) : option Z :=
  let type := ecma_get_value_type_field v in
  if (type =? ECMA_TYPE_DIRECT) || (type =? ECMA_TYPE_DIRECT_STRING) || ((type =? ECMA_TYPE_BIGINT) && (v =? ECMA_BIGINT_ZERO)) then None
  else Some (ecma_get_pointer_from_ecma_value v).

(** The value in a block *)
Definition value_in (c : content) : option Z :=
  match c with
  | BLOCK_STRING x => match data x with EXTENDED symbol_descriptor => Some symbol_descriptor | _ => None end
  | BLOCK_EXCEPTION _ value => Some value
  | _ => None
  end.

Definition child (c : content) : option Z := value_in c ≫= value_target.

(** The type of the values that refer to a block *)
Definition kind_of (c : content) : Z :=
  match c with
  | BLOCK_STRING x => if ECMA_STRING_GET_CONTAINER x =? ECMA_STRING_CONTAINER_SYMBOL then ECMA_TYPE_SYMBOL else ECMA_TYPE_STRING
  | BLOCK_BUILDER _ _ => -1
  | BLOCK_NUMBER _ => ECMA_TYPE_FLOAT
  | BLOCK_OBJECT _ => ECMA_TYPE_OBJECT
  | BLOCK_EXCEPTION _ _ => ECMA_TYPE_ERROR
  | BLOCK_BIGINT _ _ _ => ECMA_TYPE_BIGINT
  end.

(** [v] is a value of the memory [m] *)
Definition value_at (m : memory) (v : Z) : Prop :=
  match value_target v with
  | None => True
  | Some p => exists n c, m !! p = Some (n, Some c) /\ kind_of c = ecma_get_value_type_field v
  end.

(** What the value in a block may be: the description of a symbol is a string or
    undefined, an exception does not hold an exception *)
Definition value_allowed (c : content) (v : Z) : Prop :=
  match c with
  | BLOCK_STRING _ => value_target v <> None -> ecma_get_value_type_field v = ECMA_TYPE_STRING
  | _ => ecma_get_value_type_field v <> ECMA_TYPE_ERROR
  end.

(** ** Counters *)

(** Sizes and fields of strings agree *)
Definition string_good (n : Z) (x : ecma_string_t) : Prop :=
  is_u32 (refs_and_container x) /\ n = data_size (data x) /\
  match data x with
  | HEAD => ECMA_STRING_GET_CONTAINER x = ECMA_STRING_CONTAINER_UINT32_IN_DESC \/ ECMA_STRING_GET_CONTAINER x = ECMA_STRING_CONTAINER_MAGIC_STRING_EX
  | ASCII size_field buffer => ECMA_STRING_GET_CONTAINER x = ECMA_STRING_CONTAINER_HEAP_ASCII_STRING /\ ECMA_ASCII_STRING_GET_SIZE size_field = zlength buffer
  | SHORT size _ buffer => ECMA_STRING_GET_CONTAINER x = ECMA_STRING_CONTAINER_HEAP_UTF8_STRING /\ size = zlength buffer
  | LONG size _ buffer | EXTERNAL size _ buffer _ => ECMA_STRING_GET_CONTAINER x = ECMA_STRING_CONTAINER_LONG_OR_EXTERNAL_STRING /\ size = zlength buffer
  | EXTENDED _ => ECMA_STRING_GET_CONTAINER x = ECMA_STRING_CONTAINER_SYMBOL
  end.

(** A block of [n] bytes with [k] references to it *)
Definition block_good (n : Z) (c : content) (k : Z) : Prop :=
  match c with
  | BLOCK_STRING x => string_good n x /\ (ECMA_STRING_IS_STATIC x = true \/ (ECMA_STRING_IS_STATIC x = false /\ refs_and_container x / 16 = k /\ 1 <= k))
  | BLOCK_BUILDER current_size buffer => n = current_size /\ current_size = ECMA_ASCII_STRING_HEADER_SIZE + zlength buffer /\ k = 1
  | BLOCK_NUMBER _ => n = sizeof_ecma_number_t /\ k = 1
  | BLOCK_OBJECT refs => is_u32 refs /\ 4 <= n /\ refs / 32 = k
  | BLOCK_EXCEPTION refs _ => n = sizeof_ecma_extended_primitive_t /\ is_u32 refs /\ refs / 8 = k /\ 1 <= k
  | BLOCK_BIGINT refs sign_and_size digits => n = ECMA_BIGINT_GET_BYTE_SIZE (ECMA_BIGINT_GET_SIZE sign_and_size) + sizeof_ecma_extended_primitive_t
      /\ sizeof_ecma_extended_primitive_t + 4 * zlength digits <= n /\ is_u32 refs /\ refs / 8 = k /\ 1 <= k
  end.

Definition refers (p : Z) (b : option content) : Z :=
  match b with Some c => if bool_decide (child c = Some p) then 1 else 0 | None => 0 end.

(** The references to [p] from blocks *)
Definition inner (p : Z) (m : memory) : Z := map_fold (fun _ x k => refers p (snd x) + k) 0 m.

Record counted (held : Z -> Z) (m : memory) : Prop := {
  counted_block : forall p n b, m !! p = Some (n, b) -> exists c, b = Some c /\ is_block p /\ block_good n c (held p + inner p m)
    /\ forall v, value_in c = Some v -> value_at m v /\ value_allowed c v;
  counted_held : forall p, 0 <= held p;
  counted_live : forall p, 0 < held p + inner p m -> is_Some (m !! p)
}.

Lemma refers_range p b : 0 <= refers p b <= 1.
Proof. destruct b as [c |]; cbn; [case_bool_decide |]; lia. Qed.

Lemma refers_fold (p : Z) (j1 j2 : Z) (x1 x2 : Z * option content) (k : Z) : refers p x1.2 + (refers p x2.2 + k) = refers p x2.2 + (refers p x1.2 + k).
Proof. lia. Qed.

Lemma inner_insert p q x m : m !! q = None -> inner p (<[q := x]> m) = refers p (snd x) + inner p m.
Proof. intros Hq. unfold inner. rewrite map_fold_insert_L; [reflexivity | intros; apply refers_fold; exact 0 | exact Hq]. Qed.

Lemma inner_delete p q x m : m !! q = Some x -> inner p m = refers p (snd x) + inner p (delete q m).
Proof. intros Hq. rewrite <- (inner_insert p q x (delete q m)) by apply lookup_delete_eq. now rewrite insert_delete_id. Qed.

Lemma inner_update p q x y m : m !! q = Some x -> refers p (snd y) = refers p (snd x) -> inner p (<[q := y]> m) = inner p m.
Proof.
  intros Hq Hr. rewrite (inner_delete p q x m Hq). rewrite <- (insert_delete_eq m q y), inner_insert by apply lookup_delete_eq. lia.
Qed.

Lemma inner_nonneg p m : 0 <= inner p m.
Proof.
  unfold inner. apply (map_fold_weak_ind (fun k _ => 0 <= k)); [lia |]. intros q x m' k _ Hk. pose proof (refers_range p (snd x)). lia.
Qed.

Lemma inner_refers p q n b m : m !! q = Some (n, b) -> refers p b <= inner p m.
Proof. intros Hq. rewrite (inner_delete p q _ m Hq). cbn [snd]. pose proof (inner_nonneg p (delete q m)). lia. Qed.

Lemma refers_child p c : refers p (Some c) = 1 <-> child c = Some p.
Proof. cbn. case_bool_decide; split; try lia; try easy. Qed.

Lemma refers_same p c c' : value_in c' = value_in c -> refers p (Some c') = refers p (Some c).
Proof. intros E. cbn. unfold child. now rewrite E. Qed.

(** ** Changes of a counted memory *)

Lemma value_at_update m p n c c' v : m !! p = Some (n, Some c) -> kind_of c' = kind_of c -> value_at m v -> value_at (<[p := (n, Some c')]> m) v.
Proof.
  intros Hp Hk. unfold value_at. destruct (value_target v) as [q |]; [| easy]. intros (k & d & Hq & Hd).
  destruct (decide (p = q)) as [<- | Hne].
  - exists n, c'. rewrite lookup_insert_eq. split; [reflexivity |]. assert (c = d) as -> by congruence. congruence.
  - exists k, d. now rewrite lookup_insert_ne by exact Hne.
Qed.

Lemma value_at_fresh m p x v : m !! p = None -> value_at m v -> value_at (<[p := x]> m) v.
Proof.
  intros Hp. unfold value_at. destruct (value_target v) as [q |]; [| easy]. intros (k & d & Hq & Hd). exists k, d.
  rewrite lookup_insert_ne; [now split |]. intros ->. congruence.
Qed.

Lemma value_at_delete m p v : value_target v <> Some p -> value_at m v -> value_at (delete p m) v.
Proof.
  intros Hp. unfold value_at. destruct (value_target v) as [q |]; [| easy]. intros (k & d & Hq & Hd). exists k, d.
  rewrite lookup_delete_ne; [now split |]. intros ->. now apply Hp.
Qed.

(** A block whose counter changes with the references of the program *)
Lemma counted_update held held' m p n c c' : counted held m -> m !! p = Some (n, Some c) -> value_in c' = value_in c -> kind_of c' = kind_of c ->
  (forall v, value_allowed c v -> value_allowed c' v) ->
  block_good n c' (held' p + inner p m) -> (forall q, q <> p -> held' q = held q) -> 0 <= held' p -> counted held' (<[p := (n, Some c')]> m).
Proof.
  intros [Hb Hh Hl] Hp Hv Hk Ha Hgood Hsame H0.
  assert (Hin : forall q, inner q (<[p := (n, Some c')]> m) = inner q m) by (intros q; apply (inner_update q p _ _ m Hp); now apply refers_same).
  split.
  - intros q k b Hq. rewrite Hin. destruct (decide (p = q)) as [<- | Hne].
    + rewrite lookup_insert_eq in Hq. assert (k = n) as -> by congruence. assert (b = Some c') as -> by congruence. exists c'.
      destruct (Hb p n (Some c) Hp) as (d & Hd & Hblock & _ & Hval). assert (c = d) as -> by congruence. splits; try easy.
      intros v Hc'. rewrite Hv in Hc'. destruct (Hval v Hc'). split; [now apply (value_at_update m p n d) | now apply Ha].
    + rewrite lookup_insert_ne in Hq by exact Hne. destruct (Hb q k b Hq) as (d & Hd & Hblock & Hg & Hval). exists d. rewrite Hsame by congruence. splits; try easy.
      intros v Hd'. destruct (Hval v Hd'). split; [now apply (value_at_update m p n c) | assumption].
  - intros q. destruct (decide (q = p)) as [-> | Hne]; [exact H0 | now rewrite Hsame].
  - intros q. rewrite Hin. destruct (decide (p = q)) as [<- | Hne]; [rewrite lookup_insert_eq; eauto |].
    rewrite lookup_insert_ne, Hsame by congruence. apply Hl.
Qed.

(** A new block; the value in it was the program's *)
Lemma counted_insert held held' m p n c : counted held m -> m !! p = None -> is_block p -> block_good n c 1 ->
  (forall v, value_in c = Some v -> value_at m v /\ value_allowed c v) -> child c <> Some p ->
  (forall q, held' q = held q + (if bool_decide (q = p) then 1 else 0) - refers q (Some c)) -> (forall q, 0 <= held' q) ->
  counted held' (<[p := (n, Some c)]> m).
Proof.
  intros [Hb Hh Hl] Hp Hblock Hgood Hval Hself Hheld H0.
  assert (Hin : forall q, inner q (<[p := (n, Some c)]> m) = refers q (Some c) + inner q m) by (intros q; now apply inner_insert).
  assert (Hsum : forall q, held' q + inner q (<[p := (n, Some c)]> m) = held q + inner q m + (if bool_decide (q = p) then 1 else 0)) by (intros q; rewrite Hheld, Hin; lia).
  assert (Hzero : held p + inner p m = 0).
  { pose proof (Hh p). pose proof (inner_nonneg p m). destruct (Z.eq_dec (held p + inner p m) 0); [assumption |]. destruct (Hl p ltac:(lia)). congruence. }
  split.
  - intros q k b Hq. rewrite Hsum. destruct (decide (p = q)) as [<- | Hne].
    + rewrite lookup_insert_eq in Hq. assert (k = n) as -> by congruence. assert (b = Some c) as -> by congruence. exists c.
      rewrite bool_decide_eq_true_2, Hzero by reflexivity. splits; try easy. intros v Hv. destruct (Hval v Hv). split; [now apply value_at_fresh | assumption].
    + rewrite lookup_insert_ne in Hq by exact Hne. destruct (Hb q k b Hq) as (d & Hd & Hbl & Hg & Hv). exists d. rewrite bool_decide_eq_false_2, Z.add_0_r by congruence.
      splits; try easy. intros v Hd'. destruct (Hv v Hd'). split; [now apply value_at_fresh | assumption].
  - exact H0.
  - intros q. rewrite Hsum. destruct (decide (p = q)) as [<- | Hne]; [rewrite lookup_insert_eq; eauto |].
    rewrite lookup_insert_ne, bool_decide_eq_false_2, Z.add_0_r by congruence. apply Hl.
Qed.

(** A block that is released; the value in it becomes the program's *)
Lemma counted_delete held held' m p n c : counted held m -> m !! p = Some (n, Some c) -> held p = 1 -> inner p m = 0 ->
  (forall q, held' q = held q - (if bool_decide (q = p) then 1 else 0) + refers q (Some c)) ->
  counted held' (delete p m) /\ (forall v, value_in c = Some v -> value_at (delete p m) v).
Proof.
  intros [Hb Hh Hl] Hp H1 Hi0 Hheld.
  assert (Hin : forall q, inner q m = refers q (Some c) + inner q (delete p m)) by (intros q; now apply (inner_delete q p (n, Some c) m)).
  assert (Hsum : forall q, held' q + inner q (delete p m) = held q + inner q m - (if bool_decide (q = p) then 1 else 0)) by (intros q; rewrite Hheld, Hin; lia).
  assert (Hnone : forall q k d, m !! q = Some (k, Some d) -> child d <> Some p).
  { intros q k d Hq Hd. pose proof (inner_refers p q _ _ m Hq). rewrite (proj2 (refers_child p d) Hd) in *. lia. }
  assert (Hvals : forall q k d v, m !! q = Some (k, Some d) -> value_in d = Some v -> value_target v <> Some p).
  { intros q k d v Hq Hv E. apply (Hnone q k d Hq). unfold child. now rewrite Hv. }
  split; [split |].
  - intros q k b Hq. apply lookup_delete_Some in Hq as [Hne Hq]. rewrite Hsum, bool_decide_eq_false_2, Z.sub_0_r by congruence.
    destruct (Hb q k b Hq) as (d & -> & Hbl & Hg & Hv). exists d. splits; try easy. intros v Hd. destruct (Hv v Hd). split; [| assumption].
    apply value_at_delete; [eapply Hvals; eassumption | assumption].
  - intros q. rewrite Hheld. pose proof (Hh q). pose proof (refers_range q (Some c)). case_bool_decide as E; [subst; lia | lia].
  - intros q. rewrite Hsum. intros Hq. destruct (decide (q = p)) as [-> | Hne].
    + rewrite bool_decide_eq_true_2 in Hq by reflexivity. lia.
    + rewrite bool_decide_eq_false_2, Z.sub_0_r in Hq by exact Hne. rewrite lookup_delete_ne by congruence. now apply Hl.
  - intros v Hv. destruct (Hb p n (Some c) Hp) as (d & Hd & _ & _ & Hval). assert (c = d) as -> by congruence.
    apply value_at_delete; [eapply Hvals; eassumption | now apply Hval].
Qed.

Lemma counted_ext held held' m : (forall p, held p = held' p) -> counted held m -> counted held' m.
Proof.
  intros E [Hb Hh Hl]. split.
  - intros p n b Hp. rewrite <- E. now apply Hb.
  - intros p. rewrite <- E. apply Hh.
  - intros p. rewrite <- E. apply Hl.
Qed.

#[export] Instance counted_proper : Proper (pointwise_relation Z eq ==> eq ==> iff) counted.
Proof. intros held held' E m m' <-. split; apply counted_ext; intros p; [apply E | symmetry; apply E]. Qed.

(** ** Contents up to the counters *)

Definition erase (c : content) : content :=
  match c with
  | BLOCK_STRING x => BLOCK_STRING (with_refs x (Z.land (refs_and_container x) 15))
  | BLOCK_OBJECT refs => BLOCK_OBJECT (refs mod 32)
  | BLOCK_EXCEPTION refs value => BLOCK_EXCEPTION (refs mod 8) value
  | BLOCK_BIGINT refs sign_and_size digits => BLOCK_BIGINT (refs mod 8) sign_and_size digits
  | _ => c
  end.

(** The blocks in [alive] stay as they are *)
Definition keeps (alive : Z -> Prop) (m m' : memory) : Prop :=
  forall q n c, alive q -> m !! q = Some (n, Some c) -> exists c', m' !! q = Some (n, Some c') /\ erase c' = erase c.

Lemma keeps_refl alive m : keeps alive m m.
Proof. intros q n c _ Hq. now exists c. Qed.

Lemma kept_trans alive m1 m2 m3 : keeps alive m1 m2 -> keeps alive m2 m3 -> keeps alive m1 m3.
Proof.
  intros H1 H2 q n c Ha Hq. destruct (H1 q n c Ha Hq) as (c' & Hq' & E'). destruct (H2 q n c' Ha Hq') as (c'' & Hq'' & E''). exists c''. split; [exact Hq'' | congruence].
Qed.

Lemma keeps_mono (alive alive' : Z -> Prop) m m' : (forall q, alive' q -> alive q) -> keeps alive m m' -> keeps alive' m m'.
Proof. intros H Hk q n c Ha. apply Hk. now apply H. Qed.

Lemma keeps_insert alive m p n c c' : m !! p = Some (n, Some c) -> erase c' = erase c -> keeps alive m (<[p := (n, Some c')]> m).
Proof.
  intros Hp E q k d _ Hq. destruct (decide (p = q)) as [<- | Hne].
  - rewrite lookup_insert_eq. exists c'. assert (k = n) as -> by congruence. assert (d = c) as -> by congruence. now split.
  - rewrite lookup_insert_ne by exact Hne. now exists d.
Qed.

Lemma keeps_fresh alive m p x : m !! p = None -> keeps alive m (<[p := x]> m).
Proof. intros Hp q k d _ Hq. exists d. rewrite lookup_insert_ne; [now split |]. intros ->. congruence. Qed.

Lemma keeps_delete (alive : Z -> Prop) m p : ~ alive p -> keeps alive m (delete p m).
Proof. intros Hp q k d Ha Hq. exists d. rewrite lookup_delete_ne; [now split |]. intros ->. now apply Hp. Qed.

(** ** Counters of one block *)

(** The counter changed by [d] *)
Definition bump (d : Z) (c : content) : content :=
  match c with
  | BLOCK_STRING x => BLOCK_STRING (with_refs x (refs_and_container x + 16 * d))
  | BLOCK_OBJECT refs => BLOCK_OBJECT (refs + 32 * d)
  | BLOCK_EXCEPTION refs value => BLOCK_EXCEPTION (refs + 8 * d) value
  | BLOCK_BIGINT refs sign_and_size digits => BLOCK_BIGINT (refs + 8 * d) sign_and_size digits
  | _ => c
  end.

(** Blocks whose counter is used, and its largest value *)
Definition counter_limit (c : content) : Z :=
  match c with
  | BLOCK_STRING x => if ECMA_STRING_IS_STATIC x then 0 else 268435455
  | BLOCK_OBJECT _ => 134217726
  | BLOCK_EXCEPTION _ _ | BLOCK_BIGINT _ _ _ => 536870911
  | _ => 0
  end.

Lemma land_15_step z d : Z.land (z + 16 * d) 15 = Z.land z 15.
Proof. change 15 with (Z.ones 4). rewrite !Z.land_ones by lia. change (2 ^ 4) with 16. zmod. Qed.

Lemma container_step x d : ECMA_STRING_GET_CONTAINER (with_refs x (refs_and_container x + 16 * d)) = ECMA_STRING_GET_CONTAINER x.
Proof.
  unfold ECMA_STRING_GET_CONTAINER. cbn [refs_and_container with_refs]. change ECMA_STRING_CONTAINER_MASK with (Z.land 15 7). now rewrite !Z.land_assoc, land_15_step.
Qed.

Lemma static_step x d : ECMA_STRING_IS_STATIC (with_refs x (refs_and_container x + 16 * d)) = ECMA_STRING_IS_STATIC x.
Proof.
  unfold ECMA_STRING_IS_STATIC. cbn [refs_and_container with_refs]. change ECMA_STATIC_STRING_FLAG with (Z.land 15 8). now rewrite !Z.land_assoc, land_15_step.
Qed.

Lemma bump_erase d c : erase (bump d c) = erase c.
Proof.
  destruct c as [x | | | r | r v | r s ds]; cbn; try reflexivity.
  - unfold with_refs. cbn. now rewrite land_15_step.
  - f_equal. zmod.
  - f_equal. zmod.
  - f_equal. zmod.
Qed.
Lemma bump_value d c : value_in (bump d c) = value_in c.
Proof. now destruct c. Qed.
Lemma bump_kind d c : kind_of (bump d c) = kind_of c.
Proof. destruct c; try reflexivity. cbn [bump kind_of]. now rewrite container_step. Qed.
Lemma bump_allowed d c v : value_allowed c v -> value_allowed (bump d c) v.
Proof. now destruct c. Qed.
Lemma bump_size d c : content_size (bump d c) = content_size c.
Proof. now destruct c. Qed.

Lemma string_good_step n x d : string_good n x -> is_u32 (refs_and_container x + 16 * d) -> string_good n (with_refs x (refs_and_container x + 16 * d)).
Proof.
  intros (_ & Hn & Hd) Hr. unfold string_good. cbn [refs_and_container with_refs data]. rewrite !container_step. split; [exact Hr |]. split; [exact Hn | exact Hd].
Qed.

Lemma bump_good n c k d : block_good n c k -> 0 < counter_limit c -> 0 <= k + d -> (1 <= k + d \/ kind_of c = ECMA_TYPE_OBJECT) -> (d <= 0 \/ k < counter_limit c) -> d <= 1 ->
  block_good n (bump d c) (k + d).
Proof.
  intros Hg Hl H0 H1 Hlim Hd. destruct c as [x | | | r | r v | r s ds]; cbn [bump block_good counter_limit] in *; try lia.
  - destruct (ECMA_STRING_IS_STATIC x) eqn:Es; [lia |]. destruct Hg as [Hs [Hst | (_ & Hr & Hk)]]; [congruence |].
    destruct H1 as [H1 | H1]; [| unfold kind_of, ECMA_TYPE_OBJECT, ECMA_TYPE_SYMBOL, ECMA_TYPE_STRING in H1; destruct (_ =? _) in H1; discriminate].
    split; [apply string_good_step; [exact Hs |]; destruct Hs as (Hu & _); zmod |]. right. rewrite static_step. cbn [refs_and_container with_refs]. splits; [exact Es | zmod | exact H1].
  - destruct Hg as (Hu & Hn & Hr). splits; [zmod | exact Hn | zmod].
  - destruct Hg as (Hn & Hu & Hr & Hk). destruct H1 as [H1 | H1]; [| discriminate]. splits; [exact Hn | zmod | zmod | exact H1].
  - destruct Hg as (Hn & Hds & Hu & Hr & Hk). destruct H1 as [H1 | H1]; [| discriminate]. splits; [exact Hn | exact Hds | zmod | zmod | exact H1].
Qed.

(** ** The holdings of the program *)

Definition take (p : Z) (held : Z -> Z) : Z -> Z := fun q => held q + (if bool_decide (q = p) then 1 else 0).
Definition drop (p : Z) (held : Z -> Z) : Z -> Z := fun q => held q - (if bool_decide (q = p) then 1 else 0).
Definition own_value (v : Z) (held : Z -> Z) : Z -> Z := match value_target v with Some p => take p held | None => held end.
Definition disown_value (v : Z) (held : Z -> Z) : Z -> Z := match value_target v with Some p => drop p held | None => held end.

Lemma take_eq p held : take p held p = held p + 1.
Proof. unfold take. now rewrite bool_decide_eq_true_2. Qed.
Lemma take_ne p q held : q <> p -> take p held q = held q.
Proof. intros H. unfold take. rewrite bool_decide_eq_false_2 by exact H. lia. Qed.
Lemma drop_eq p held : drop p held p = held p - 1.
Proof. unfold drop. now rewrite bool_decide_eq_true_2. Qed.
Lemma drop_ne p q held : q <> p -> drop p held q = held q.
Proof. intros H. unfold drop. rewrite bool_decide_eq_false_2 by exact H. lia. Qed.

(** One more reference *)
Lemma counted_take held m p n c : counted held m -> m !! p = Some (n, Some c) -> 0 < counter_limit c -> held p + inner p m < counter_limit c ->
  counted (take p held) (<[p := (n, Some (bump 1 c))]> m).
Proof.
  intros Hc Hp Hlim Hroom. pose proof (counted_held _ _ Hc p) as H0. destruct (counted_block _ _ Hc p n (Some c) Hp) as (d & Hd & _ & Hg & _). assert (d = c) as -> by congruence.
  pose proof (inner_nonneg p m). apply (counted_update held _ m p n c); try assumption.
  - apply bump_value.
  - apply bump_kind.
  - apply bump_allowed.
  - rewrite take_eq. replace (held p + 1 + inner p m) with (held p + inner p m + 1) by lia. apply bump_good; try assumption; lia.
  - intros q Hq. now apply take_ne.
  - rewrite take_eq. lia.
Qed.

(** One reference less, not the last one *)
Lemma counted_drop held m p n c : counted held m -> m !! p = Some (n, Some c) -> 0 < counter_limit c -> 0 < held p ->
  (1 < held p + inner p m \/ kind_of c = ECMA_TYPE_OBJECT) -> counted (drop p held) (<[p := (n, Some (bump (-1) c))]> m).
Proof.
  intros Hc Hp Hlim Hheld Hlast. destruct (counted_block _ _ Hc p n (Some c) Hp) as (d & Hd & _ & Hg & _). assert (d = c) as -> by congruence.
  pose proof (inner_nonneg p m). apply (counted_update held _ m p n c); try assumption.
  - apply bump_value.
  - apply bump_kind.
  - apply bump_allowed.
  - rewrite drop_eq. replace (held p - 1 + inner p m) with (held p + inner p m + (-1)) by lia. apply bump_good; try assumption; lia.
  - intros q Hq. now apply drop_ne.
  - rewrite drop_eq. lia.
Qed.

(** Static strings are not counted *)
Lemma counted_static held held' m p n x : counted held m -> m !! p = Some (n, Some (BLOCK_STRING x)) -> ECMA_STRING_IS_STATIC x = true ->
  (forall q, q <> p -> held' q = held q) -> 0 <= held' p -> counted held' m.
Proof.
  intros Hc Hp Hs Hsame H0. destruct (counted_block _ _ Hc p n _ Hp) as (d & Hd & _ & Hg & _). assert (d = BLOCK_STRING x) as -> by congruence.
  rewrite <- (insert_id m p (n, Some (BLOCK_STRING x)) Hp). apply (counted_update held held' m p n (BLOCK_STRING x)); try easy.
  destruct Hg as [Hg _]. split; [exact Hg | now left].
Qed.
