(* ===== verification/Release.v ===== *)
(** * Taking and dropping references

    The functions of Ownership on counted memories (Counting): each call is
    described by the holdings of the program before and after it.  Blocks that
    are being released are set aside in [X], so that the release of what they
    refer to has the same description as any other. *)
From Stdlib Require Import ZArith Lia Bool List.
From stdpp Require Import base gmap list.
From S2P Require Import Prelude JmemHeap JmemPointers Values BlockHeap StringData Ownership Counting.
Import ListNotations.
#[local] Open Scope Z_scope.

Section Release.
Context {BH : BlockHeap} (external_string_free_callback : bool).

Definition state (X : memory) (held : Z -> Z) (m : memory) (w : world content) : Prop :=
  owns w /\ blocks w = X ∪ m /\ X ##ₘ m /\ counted held m.

(** The memory of the program, all of it *)
Definition good (held : Z -> Z) (w : world content) : Prop := owns w /\ counted held (blocks w).

(** References were dropped: nothing that is still held changes *)
Definition released (X : memory) (held : Z -> Z) (m : memory) (w : world content) : Prop :=
  exists m', state X held m' w /\ keeps (fun q => 0 < held q) m m'.

Lemma good_state held w : good held w <-> state ∅ held (blocks w) w.
Proof.
  unfold good, state. rewrite (left_id_L ∅ (∪)). split; [intros [H1 H2]; splits; try assumption; [reflexivity | apply map_disjoint_empty_l] | now intros (H1 & _ & _ & H2)].
Qed.

Lemma released_good held m w : released ∅ held m w -> good held w /\ keeps (fun q => 0 < held q) m (blocks w).
Proof.
  intros (m' & (Ho & Hb & _ & Hc) & Hk). rewrite (left_id_L ∅ (∪)) in Hb. unfold good. rewrite Hb. now splits.
Qed.

Lemma state_lookup X held m w p x : state X held m w -> m !! p = Some x -> blocks w !! p = Some x.
Proof. intros (_ & -> & Hd & _) Hp. now apply lookup_union_Some_r. Qed.

Lemma state_block X held m w p n b : state X held m w -> m !! p = Some (n, b) ->
  exists c, b = Some c /\ is_block p /\ block_good n c (held p + inner p m) /\ forall v, value_in c = Some v -> value_at m v /\ value_allowed c v.
Proof. intros (_ & _ & _ & Hc). apply (counted_block _ _ Hc). Qed.

Lemma disjoint_none (X m : memory) p x : X ##ₘ m -> m !! p = Some x -> X !! p = None.
Proof. intros Hd Hp. apply map_disjoint_Some_r with (m2 := m) (x := x); assumption. Qed.

Lemma insert_union (X m : memory) p x y : X ##ₘ m -> m !! p = Some x -> <[p := y]> (X ∪ m) = X ∪ <[p := y]> m.
Proof. intros Hd Hp. now rewrite <- insert_union_r by (eapply disjoint_none; eassumption). Qed.

Lemma state_held X held held' m w : state X held m w -> counted held' m -> state X held' m w.
Proof. intros (Ho & Hb & Hd & _) Hc. now splits. Qed.

(** A store to a block of the memory *)
Lemma runs_store X held held' m w p n c c' (Q : unit -> world content -> Prop) : state X held m w -> m !! p = Some (n, Some c) -> content_size c' <= n ->
  counted held' (<[p := (n, Some c')]> m) ->
  (forall w', state X held' (<[p := (n, Some c')]> m) w' -> notes w' = notes w -> Q tt w') -> runs (write_block p c') w Q.
Proof.
  intros Hst Hp Hfit Hc HQ. pose proof (state_lookup _ _ _ _ _ _ Hst Hp) as Hw. destruct Hst as (Ho & Hb & Hd & _).
  eapply runs_write; [exact Ho | exact Hw | now apply Z.leb_le |]. intros w' Ho'. subst w'. apply HQ; [| reflexivity].
  split; [exact Ho' |]. cbn [blocks]. rewrite Hb, (insert_union X m p (n, Some c)) by assumption. splits; [reflexivity | | exact Hc].
  apply map_disjoint_insert_r_2; [eapply disjoint_none; eassumption | exact Hd].
Qed.

(** A store to a block that is about to be released *)
Lemma runs_park X held held' m w p n c c' (Q : unit -> world content -> Prop) : state X held m w -> m !! p = Some (n, Some c) -> content_size c' <= n ->
  counted held' (delete p m) ->
  (forall w', state (<[p := (n, Some c')]> X) held' (delete p m) w' -> notes w' = notes w -> Q tt w') -> runs (write_block p c') w Q.
Proof.
  intros Hst Hp Hfit Hc HQ. pose proof (state_lookup _ _ _ _ _ _ Hst Hp) as Hw. destruct Hst as (Ho & Hb & Hd & _).
  eapply runs_write; [exact Ho | exact Hw | now apply Z.leb_le |]. intros w' Ho'. subst w'. apply HQ; [| reflexivity].
  split; [exact Ho' |]. cbn [blocks]. rewrite Hb, (insert_union X m p (n, Some c)) by assumption. splits; [| | exact Hc].
  - rewrite <- (insert_delete_eq m p), <- insert_union_l, <- insert_union_r; [reflexivity |]. eapply disjoint_none; eassumption.
  - apply map_disjoint_insert_l_2; [apply lookup_delete_eq | now apply map_disjoint_delete_r].
Qed.

(** The release of a block that was set aside *)
Lemma runs_free_parked X held m w p n b (Q : unit -> world content -> Prop) : state (<[p := (n, b)]> X) held m w -> X !! p = None ->
  (forall w', state X held m w' -> notes w' = notes w -> Q tt w') -> runs (jmem_heap_free_block p n) w Q.
Proof.
  intros (Ho & Hb & Hd & Hc) HX HQ. apply map_disjoint_insert_l in Hd as [Hm Hd].
  apply (runs_free p n b); [exact Ho | rewrite Hb; apply lookup_union_Some_l, lookup_insert_eq |].
  intros h w' Ho'. subst w'. apply HQ; [| reflexivity]. split; [exact Ho' |]. cbn [blocks]. rewrite Hb. splits; [| exact Hd | exact Hc].
  rewrite <- insert_union_l, delete_insert_id; [reflexivity |]. apply lookup_union_None. now split.
Qed.

Lemma runs_read_string w p n x (Q : ecma_string_t -> world content -> Prop) : blocks w !! p = Some (n, Some (BLOCK_STRING x)) -> Q x w -> runs (read_string p) w Q.
Proof. intros Hp HQ. eapply runs_reading; [| exact HQ]. unfold string_at, block_at. now rewrite Hp. Qed.

(** ** Strings *)

Lemma refs_low x d : ECMA_STRING_IS_STATIC x = false -> is_u32 (refs_and_container x) -> refs_and_container x / 16 = d ->
  0 <= refs_and_container x - 16 * d < 8.
Proof.
  intros Hs Hu <-. unfold ECMA_STRING_IS_STATIC in Hs. apply negb_false_iff, Z.eqb_eq in Hs. set (z := refs_and_container x) in *.
  assert (Hmod : z - 16 * (z / 16) = z mod 16) by zmod. rewrite Hmod. assert (Hl : Z.land (z mod 16) 8 = 0).
  { change 16 with (2 ^ 4). rewrite <- Z.land_ones, <- Z.land_assoc by lia. exact Hs. }
  assert (Hr : 0 <= z mod 16 < 16) by (apply Z.mod_pos_bound; lia). destruct (Z.lt_ge_cases (z mod 16) 8); [lia |]. exfalso.
  assert (E : z mod 16 = 1 * 2 ^ 3 + (z mod 16 - 8)) by lia. rewrite E, <- lor_mul_low in Hl by (cbn; lia).
  rewrite Z.land_lor_distr_l in Hl. apply Z.lor_eq_0_iff in Hl as [Hl _]. discriminate.
Qed.

Lemma with_refs_bump x d : BLOCK_STRING (with_refs x (refs_and_container x + 16 * d)) = bump d (BLOCK_STRING x).
Proof. reflexivity. Qed.

Lemma ref_string_spec X held m w p n x : state X held m w -> m !! p = Some (n, Some (BLOCK_STRING x)) -> held p + inner p m < 268435455 ->
  runs (ecma_ref_ecma_string_non_direct p) w (fun _ w' => exists m', state X (take p held) m' w' /\ keeps (fun _ => True) m m' /\ notes w' = notes w).
Proof.
  intros Hst Hp Hroom. pose proof (state_lookup _ _ _ _ _ _ Hst Hp) as Hw. pose proof Hst as (_ & _ & _ & Hc).
  destruct (state_block _ _ _ _ _ _ _ Hst Hp) as (c & E & Hblock & Hg & _). assert (c = BLOCK_STRING x) as -> by congruence. clear E.
  destruct Hg as [(Hu & Hn & _) Hk]. unfold ecma_ref_ecma_string_non_direct. apply runs_bind. eapply runs_read_string; [exact Hw |].
  destruct Hk as [Hs | (Hs & Hk & H1)]; rewrite Hs.
  - apply runs_ret. exists m. splits; [| apply keeps_refl | reflexivity]. apply (state_held X held); [exact Hst |].
    apply (counted_static held _ m p n x); try assumption; [intros q Hq; now apply take_ne | rewrite take_eq; pose proof (counted_held _ _ Hc p); lia].
  - pose proof (refs_low x _ Hs Hu Hk) as Hlow. unfold ECMA_STRING_MAX_REF, ECMA_STRING_REF_ONE. destruct (Z.ltb_spec (refs_and_container x) 4294967280); [| lia].
    rewrite u32_small by (unfold is_u32 in *; lia). replace (refs_and_container x + 16) with (refs_and_container x + 16 * 1) by lia. unfold write_string. rewrite with_refs_bump.
    eapply (runs_store X held (take p held) m w p n (BLOCK_STRING x)); [exact Hst | exact Hp | rewrite bump_size; cbn [content_size]; lia | |].
    + apply counted_take; try assumption; cbn [counter_limit]; rewrite Hs; lia.
    + intros w' Hst' Hn'. eexists. splits; [exact Hst' | | exact Hn']. apply (keeps_insert _ _ _ n (BLOCK_STRING x)); [exact Hp | apply bump_erase].
Qed.

(** What a function that drops the reference in a value does *)
Definition drops (f : Z -> W content unit) (v : Z) : Prop :=
  forall X held m w, state X held m w -> value_at m v -> (forall q, value_target v = Some q -> 0 < held q) ->
    runs (f v) w (fun _ w' => released X (disown_value v held) m w').

(** The release of a string whose last reference was dropped *)
Lemma destroy_spec f X held m w p n x : state (<[p := (n, Some (BLOCK_STRING x))]> X) held m w -> X !! p = None -> string_good n x ->
  (forall v, data x = EXTENDED v -> drops f v /\ value_at m v /\ forall q, value_target v = Some q -> 0 < held q) ->
  runs (ecma_destroy_ecma_string external_string_free_callback f p) w
    (fun _ w' => released X (match data x with EXTENDED v => disown_value v held | _ => held end) m w').
Proof.
  intros Hst HX (Hu & Hn & Hd) Hf.
  assert (Hw : blocks w !! p = Some (n, Some (BLOCK_STRING x))) by (destruct Hst as (_ & -> & _); apply lookup_union_Some_l, lookup_insert_eq).
  assert (Hfree : forall k (w1 : world content), k = n -> state (<[p := (n, Some (BLOCK_STRING x))]> X) held m w1 -> runs (jmem_heap_free_block p k) w1 (fun _ w' => released X held m w')).
  { intros k w1 -> Hst1. eapply runs_free_parked; [exact Hst1 | exact HX |]. intros w' Hst' _. exists m. split; [exact Hst' | apply keeps_refl]. }
  unfold ecma_destroy_ecma_string. apply runs_bind. eapply runs_read_string; [exact Hw |]. cbv zeta. destruct (data x) as [| f' b | s l b | s l b | s l b us | d].
  - destruct Hd as [-> | ->]; apply Hfree; (assumption || (rewrite Hn; reflexivity)).
  - destruct Hd as [-> Hs]. apply Hfree; [| exact Hst]. rewrite Hn. cbn [data_size]. lia.
  - destruct Hd as [-> Hs]. apply Hfree; [| exact Hst]. rewrite Hn. cbn [data_size]. lia.
  - destruct Hd as [-> Hs]. apply Hfree; [| exact Hst]. rewrite Hn. cbn [data_size]. lia.
  - destruct Hd as [-> Hs]. cbn [Z.eqb ECMA_STRING_CONTAINER_LONG_OR_EXTERNAL_STRING ECMA_STRING_CONTAINER_HEAP_UTF8_STRING].
    apply runs_bind. destruct external_string_free_callback; [apply (runs_mono _ _ (fun _ w' => state (<[p := (n, Some (BLOCK_STRING x))]> X) held m w')); [exact Hst |] | apply runs_ret; apply Hfree; [rewrite Hn; reflexivity | exact Hst]].
    intros _ w' Hst'. apply Hfree; [rewrite Hn; reflexivity | exact Hst'].
  - rewrite Hd. cbn [Z.eqb ECMA_STRING_CONTAINER_LONG_OR_EXTERNAL_STRING ECMA_STRING_CONTAINER_HEAP_UTF8_STRING ECMA_STRING_CONTAINER_HEAP_ASCII_STRING ECMA_STRING_CONTAINER_SYMBOL].
    change (5 =? 1)%positive with false. change (5 =? 3)%positive with false. change (5 =? 5)%positive with true. cbv iota.
    destruct (Hf d eq_refl) as (Hdrops & Hat & Hq). apply runs_bind. eapply runs_mono; [apply (Hdrops _ _ _ _ Hst Hat Hq) |].
    intros _ w' (m' & Hst' & Hk). unfold ecma_dealloc_extended_string. replace sizeof_ecma_extended_string_t with n by (rewrite Hn; reflexivity).
    eapply runs_free_parked; [exact Hst' | exact HX |]. intros w'' Hst'' _. exists m'. now split.
Qed.

Lemma state_ext X held held' m w : (forall q, held q = held' q) -> state X held m w -> state X held' m w.
Proof. intros E Hst. apply (state_held X held); [exact Hst |]. apply (counted_ext held); [exact E | apply Hst]. Qed.

Lemma deref_string_spec f X held m w p n x : state X held m w -> m !! p = Some (n, Some (BLOCK_STRING x)) -> 0 < held p ->
  (forall v, data x = EXTENDED v -> drops f v) ->
  runs (ecma_deref_ecma_string_non_direct external_string_free_callback f p) w (fun _ w' => released X (drop p held) m w').
Proof.
  intros Hst Hp Hheld Hf. pose proof (state_lookup _ _ _ _ _ _ Hst Hp) as Hw. pose proof Hst as (Ho & Hb & Hd & Hc).
  destruct (state_block _ _ _ _ _ _ _ Hst Hp) as (c & E & Hblock & Hg & Hval). assert (c = BLOCK_STRING x) as -> by congruence. clear E.
  destruct Hg as [Hgood Hk]. pose proof Hgood as (Hu & Hn & _). pose proof (inner_nonneg p m) as Hin.
  unfold ecma_deref_ecma_string_non_direct. apply runs_bind. eapply runs_read_string; [exact Hw |]. destruct Hk as [Hs | (Hs & Hk & H1)]; rewrite Hs.
  - apply runs_ret. exists m. split; [| apply keeps_refl]. apply (state_held X held); [exact Hst |].
    apply (counted_static held _ m p n x); try assumption; [intros q Hq; now apply drop_ne | rewrite drop_eq; lia].
  - pose proof (refs_low x _ Hs Hu Hk) as Hlow. unfold ECMA_STRING_REF_ONE. cbv zeta. rewrite u32_small by (unfold is_u32 in *; lia).
    replace (refs_and_container x - 16) with (refs_and_container x + 16 * -1) by lia. unfold write_string. rewrite with_refs_bump. apply runs_bind.
    assert (Hlim : 0 < counter_limit (BLOCK_STRING x)) by (cbn; rewrite Hs; lia).
    destruct (Z.eq_dec (held p + inner p m) 1) as [Hlast | Hmore].
    + pose proof (string_good_step n x (-1) Hgood ltac:(unfold is_u32 in *; lia)) as Hgood'. set (y := with_refs x (refs_and_container x + 16 * -1)) in *.
      set (held1 := fun q => held q - (if bool_decide (q = p) then 1 else 0) + refers q (Some (BLOCK_STRING x))).
      destruct (counted_delete held held1 m p n (BLOCK_STRING x) Hc Hp ltac:(lia) ltac:(lia) (fun q => eq_refl)) as [Hc' Hval'].
      assert (HX : X !! p = None) by (eapply disjoint_none; eassumption).
      eapply (runs_park X held held1 m w p n (BLOCK_STRING x)); [exact Hst | exact Hp | rewrite bump_size; cbn [content_size]; lia | exact Hc' |].
      intros w' Hst' _. destruct (Z.leb_spec 16 (refs_and_container x + 16 * -1)); [lia |]. eapply runs_mono; [apply (destroy_spec f X held1 (delete p m) w' p n y Hst' HX Hgood') |].
      * intros v Hv. cbn [data with_refs y] in Hv. assert (Ev : value_in (BLOCK_STRING x) = Some v) by (cbn; now rewrite Hv). splits; [now apply Hf | now apply Hval' |].
        intros q Hq. assert (Hr : refers q (Some (BLOCK_STRING x)) = 1) by (apply refers_child; unfold child; now rewrite Ev).
        unfold held1. rewrite Hr. pose proof (counted_held _ _ Hc q). case_bool_decide; [subst q; lia | lia].
      * intros _ w'' (m' & Hst'' & Hk''). assert (Eh : forall q, (match data y with EXTENDED v => disown_value v held1 | _ => held1 end) q = drop p held q).
        { intros q. change (data y) with (data x). unfold held1, drop, refers, child. cbn [value_in]. destruct (data x) as [| | | | | v];
            try (rewrite (bool_decide_eq_false_2 (_ = Some q)) by easy; lia).
          cbn [mbind option_bind]. unfold disown_value. destruct (value_target v) as [r |]; [unfold drop | rewrite (bool_decide_eq_false_2 (None = Some q)) by easy; lia].
          destruct (decide (q = r)) as [-> | Hr]; [rewrite (bool_decide_eq_true_2 (Some r = Some r)), (bool_decide_eq_true_2 (r = r)) by reflexivity; lia |].
          rewrite (bool_decide_eq_false_2 (Some r = Some q)), (bool_decide_eq_false_2 (q = r)) by congruence. lia. }
        exists m'. split; [eapply state_ext; [exact Eh | exact Hst''] |]. eapply kept_trans; [apply (keeps_delete _ m p); rewrite drop_eq; lia |].
        eapply keeps_mono; [| exact Hk'']. intros q Hq. rewrite <- Eh in Hq. exact Hq.
    + eapply (runs_store X held (drop p held) m w p n (BLOCK_STRING x)); [exact Hst | exact Hp | rewrite bump_size; cbn [content_size]; lia | apply counted_drop; try assumption; left; lia |].
      intros w' Hst' _. destruct (Z.leb_spec 16 (refs_and_container x + 16 * -1)); [| lia]. apply runs_ret. eexists. split; [exact Hst' |].
      apply (keeps_insert _ _ _ n (BLOCK_STRING x)); [exact Hp | apply bump_erase].
Qed.

(** ** Other blocks *)

Lemma kind_string c : kind_of c = ECMA_TYPE_STRING \/ kind_of c = ECMA_TYPE_SYMBOL -> exists x, c = BLOCK_STRING x.
Proof. destruct c as [x | | | | |]; intros [H | H]; try discriminate; now exists x. Qed.
Lemma kind_object c : kind_of c = ECMA_TYPE_OBJECT -> exists r, c = BLOCK_OBJECT r.
Proof. destruct c as [x | | | r | |]; cbn; try discriminate; [| now exists r]. destruct (_ =? _); discriminate. Qed.
Lemma kind_number c : kind_of c = ECMA_TYPE_FLOAT -> exists z, c = BLOCK_NUMBER z.
Proof. destruct c as [x | | z | | |]; cbn; try discriminate; [| now exists z]. destruct (_ =? _); discriminate. Qed.
Lemma kind_bigint c : kind_of c = ECMA_TYPE_BIGINT -> exists r s ds, c = BLOCK_BIGINT r s ds.
Proof. destruct c as [x | | | | | r s ds]; cbn; try discriminate; [| now exists r, s, ds]. destruct (_ =? _); discriminate. Qed.
Lemma kind_exception c : kind_of c = ECMA_TYPE_ERROR -> exists r v, c = BLOCK_EXCEPTION r v.
Proof. destruct c as [x | | | | r v |]; cbn; try discriminate; [| now exists r, v]. destruct (_ =? _); discriminate. Qed.

Lemma kind_values c : kind_of c = ECMA_TYPE_STRING \/ kind_of c = ECMA_TYPE_SYMBOL \/ kind_of c = ECMA_TYPE_FLOAT \/ kind_of c = ECMA_TYPE_OBJECT
  \/ kind_of c = ECMA_TYPE_ERROR \/ kind_of c = ECMA_TYPE_BIGINT \/ kind_of c = -1.
Proof. destruct c as [x | | | | |]; cbn; try tauto. destruct (_ =? _); tauto. Qed.

(** The last owner releases a number *)
Lemma free_number_spec X held m w p n z : state X held m w -> m !! p = Some (n, Some (BLOCK_NUMBER z)) -> 0 < held p ->
  runs (ecma_dealloc_number p) w (fun _ w' => released X (drop p held) m w').
Proof.
  intros Hst Hp Hheld. pose proof (state_lookup _ _ _ _ _ _ Hst Hp) as Hw. pose proof Hst as (Ho & Hb & Hd & Hc).
  destruct (state_block _ _ _ _ _ _ _ Hst Hp) as (c & E & _ & Hg & _). assert (c = BLOCK_NUMBER z) as -> by congruence. destruct Hg as [-> Hk].
  pose proof (inner_nonneg p m). unfold ecma_dealloc_number. eapply runs_free; [exact Ho | exact Hw |]. intros h w' Ho'. subst w'.
  exists (delete p m). split; [| apply keeps_delete; rewrite drop_eq; lia]. split; [exact Ho' |]. cbn [blocks]. rewrite Hb.
  split; [now rewrite delete_union, (delete_id X) by (eapply disjoint_none; eassumption) |]. split; [now apply map_disjoint_delete_r |].
  apply (counted_delete held _ m p _ (BLOCK_NUMBER z) Hc Hp); try lia. intros q. unfold drop, refers, child. cbn. rewrite (bool_decide_eq_false_2 (None = Some q)) by easy. lia.
Qed.

Lemma deref_object_spec X held m w p n r : state X held m w -> m !! p = Some (n, Some (BLOCK_OBJECT r)) -> 0 < held p ->
  runs (ecma_deref_object p) w (fun _ w' => released X (drop p held) m w').
Proof.
  intros Hst Hp Hheld. pose proof (state_lookup _ _ _ _ _ _ Hst Hp) as Hw. pose proof Hst as (_ & _ & _ & Hc).
  destruct (state_block _ _ _ _ _ _ _ Hst Hp) as (c & E & _ & Hg & _). assert (c = BLOCK_OBJECT r) as -> by congruence. destruct Hg as (Hu & Hn & Hk).
  pose proof (inner_nonneg p m). unfold ecma_deref_object. apply runs_bind. eapply runs_reading; [unfold block_at; rewrite Hw; reflexivity |].
  unfold ECMA_OBJECT_REF_ONE. rewrite u32_small by zmod. replace (r - 32) with (r + 32 * -1) by lia. change (BLOCK_OBJECT (r + 32 * -1)) with (bump (-1) (BLOCK_OBJECT r)).
  eapply (runs_store X held (drop p held) m w p n (BLOCK_OBJECT r)); [exact Hst | exact Hp | cbn; lia | apply counted_drop; try assumption; [cbn; lia | now right] |].
  intros w' Hst' _. eexists. split; [exact Hst' |]. apply (keeps_insert _ _ _ n (BLOCK_OBJECT r)); [exact Hp | apply bump_erase].
Qed.

Lemma ref_object_spec X held m w p n r : state X held m w -> m !! p = Some (n, Some (BLOCK_OBJECT r)) -> held p + inner p m < 134217726 ->
  runs (ecma_ref_object_inline p) w (fun _ w' => exists m', state X (take p held) m' w' /\ keeps (fun _ => True) m m' /\ notes w' = notes w).
Proof.
  intros Hst Hp Hroom. pose proof (state_lookup _ _ _ _ _ _ Hst Hp) as Hw. pose proof Hst as (_ & _ & _ & Hc).
  destruct (state_block _ _ _ _ _ _ _ Hst Hp) as (c & E & _ & Hg & _). assert (c = BLOCK_OBJECT r) as -> by congruence. destruct Hg as (Hu & Hn & Hk).
  unfold ecma_ref_object_inline. apply runs_bind. eapply runs_reading; [unfold block_at; rewrite Hw; reflexivity |].
  unfold ECMA_OBJECT_REF_ONE, ECMA_OBJECT_MAX_REF. destruct (Z.ltb_spec r 4294967232); [| zmod]. rewrite u32_small by zmod.
  replace (r + 32) with (r + 32 * 1) by lia. change (BLOCK_OBJECT (r + 32 * 1)) with (bump 1 (BLOCK_OBJECT r)).
  eapply (runs_store X held (take p held) m w p n (BLOCK_OBJECT r)); [exact Hst | exact Hp | cbn; lia | apply counted_take; try assumption; cbn; lia |].
  intros w' Hst' Hn'. eexists. splits; [exact Hst' | | exact Hn']. apply (keeps_insert _ _ _ n (BLOCK_OBJECT r)); [exact Hp | apply bump_erase].
Qed.

(** The block whose counter is read *)
Definition primitive (c : content) : Prop := match c with BLOCK_EXCEPTION _ _ | BLOCK_BIGINT _ _ _ => True | _ => False end.
Definition primitive_refs (c : content) : Z := match c with BLOCK_EXCEPTION refs _ | BLOCK_BIGINT refs _ _ => refs | _ => 0 end.

Lemma runs_read_primitive w p n c (Q : Z * (Z -> content) -> world content -> Prop) : blocks w !! p = Some (n, Some c) -> primitive c ->
  (forall block, (forall d, block (primitive_refs c + 8 * d) = bump d c) -> Q (primitive_refs c, block) w) -> runs (read_primitive p) w Q.
Proof.
  intros Hp Hprim HQ. destruct c as [| | | | r v | r s ds]; try contradiction;
    (eapply runs_reading; [unfold block_at; rewrite Hp; reflexivity | apply HQ; intros d; reflexivity]).
Qed.

Lemma primitive_good n c k : primitive c -> block_good n c k -> is_u32 (primitive_refs c) /\ primitive_refs c / 8 = k /\ 1 <= k /\ content_size c <= n /\ counter_limit c = 536870911.
Proof.
  destruct c as [| | | | r v | r s ds]; try contradiction; intros _; cbn [block_good primitive_refs content_size counter_limit].
  - intros (-> & Hu & Hr & Hk). splits; try assumption; lia.
  - intros (Hn & Hs & Hu & Hr & Hk). splits; try assumption; lia.
Qed.

Lemma ref_primitive_spec X held m w p n c : state X held m w -> m !! p = Some (n, Some c) -> primitive c -> held p + inner p m < 536870911 ->
  runs (ecma_ref_extended_primitive p) w (fun _ w' => exists m', state X (take p held) m' w' /\ keeps (fun _ => True) m m' /\ notes w' = notes w).
Proof.
  intros Hst Hp Hprim Hroom. pose proof (state_lookup _ _ _ _ _ _ Hst Hp) as Hw. pose proof Hst as (_ & _ & _ & Hc).
  destruct (state_block _ _ _ _ _ _ _ Hst Hp) as (c' & E & _ & Hg & _). assert (c' = c) as -> by congruence. destruct (primitive_good _ _ _ Hprim Hg) as (Hu & Hr & Hk & Hsize & Hlim).
  unfold ecma_ref_extended_primitive. apply runs_bind. eapply runs_read_primitive; [exact Hw | exact Hprim |]. intros block Hblock.
  unfold ECMA_EXTENDED_PRIMITIVE_MAX_REF, ECMA_EXTENDED_PRIMITIVE_REF_ONE. destruct (Z.ltb_spec (primitive_refs c) 4294967288); [| zmod].
  rewrite u32_small by zmod. replace (primitive_refs c + 8) with (primitive_refs c + 8 * 1) by lia. rewrite Hblock.
  eapply (runs_store X held (take p held) m w p n c); [exact Hst | exact Hp | now rewrite bump_size | apply counted_take; try assumption; lia |].
  intros w' Hst' Hn'. eexists. splits; [exact Hst' | | exact Hn']. apply (keeps_insert _ _ _ n c); [exact Hp | apply bump_erase].
Qed.

(** Dropping a reference to a large number or an exception; [last] releases the block *)
Lemma deref_primitive_spec X held m w p n c (last : content -> W content unit) : state X held m w -> m !! p = Some (n, Some c) -> primitive c -> 0 < held p ->
  (forall held1 w1, (forall q, held1 q = drop p held q + refers q (Some c)) -> counted held1 (delete p m) -> (forall v, value_in c = Some v -> value_at (delete p m) v) ->
    state (<[p := (n, Some (bump (-1) c))]> X) held1 (delete p m) w1 -> X !! p = None ->
    runs (last (bump (-1) c)) w1 (fun _ w' => released X (drop p held) (delete p m) w')) ->
  runs ('(refs, block) ← read_primitive p;
        let refs := u32 (refs - ECMA_EXTENDED_PRIMITIVE_REF_ONE) in
        _ ← write_block p (block refs);
        if ECMA_EXTENDED_PRIMITIVE_REF_ONE <=? refs then mret tt else last (block refs)) w
    (fun _ w' => released X (drop p held) m w').
Proof.
  intros Hst Hp Hprim Hheld Hlast. pose proof (state_lookup _ _ _ _ _ _ Hst Hp) as Hw. pose proof Hst as (_ & _ & Hd & Hc). pose proof (inner_nonneg p m).
  destruct (state_block _ _ _ _ _ _ _ Hst Hp) as (c' & E & _ & Hg & _). assert (c' = c) as -> by congruence. destruct (primitive_good _ _ _ Hprim Hg) as (Hu & Hr & Hk & Hsize & Hlim).
  apply runs_bind. eapply runs_read_primitive; [exact Hw | exact Hprim |]. intros block Hblock. cbv zeta. unfold ECMA_EXTENDED_PRIMITIVE_REF_ONE. rewrite u32_small by zmod.
  replace (primitive_refs c - 8) with (primitive_refs c + 8 * -1) by lia. rewrite Hblock. apply runs_bind.
  destruct (Z.eq_dec (held p + inner p m) 1) as [H1 | H1].
  - set (held1 := fun q => held q - (if bool_decide (q = p) then 1 else 0) + refers q (Some c)).
    destruct (counted_delete held held1 m p n c Hc Hp ltac:(lia) ltac:(lia) (fun q => eq_refl)) as [Hc' Hval'].
    eapply (runs_park X held held1 m w p n c); [exact Hst | exact Hp | now rewrite bump_size | exact Hc' |].
    intros w' Hst' _. destruct (Z.leb_spec 8 (primitive_refs c + 8 * -1)); [zmod |]. eapply runs_mono; [apply (Hlast held1); try assumption; [reflexivity | eapply disjoint_none; eassumption] |].
    intros _ w'' (m' & Hst'' & Hk''). exists m'. split; [exact Hst'' |]. eapply kept_trans; [apply (keeps_delete _ m p); rewrite drop_eq; lia | exact Hk''].
  - eapply (runs_store X held (drop p held) m w p n c); [exact Hst | exact Hp | now rewrite bump_size | apply counted_drop; try assumption; [lia | left; lia] |].
    intros w' Hst' _. destruct (Z.leb_spec 8 (primitive_refs c + 8 * -1)); [| zmod]. apply runs_ret. eexists. split; [exact Hst' |].
    apply (keeps_insert _ _ _ n c); [exact Hp | apply bump_erase].
Qed.

Lemma deref_bigint_spec X held m w p n r s ds : state X held m w -> m !! p = Some (n, Some (BLOCK_BIGINT r s ds)) -> 0 < held p ->
  runs (ecma_deref_bigint p) w (fun _ w' => released X (drop p held) m w').
Proof.
  intros Hst Hp Hheld. destruct (state_block _ _ _ _ _ _ _ Hst Hp) as (c & E & _ & Hg & _). assert (c = BLOCK_BIGINT r s ds) as -> by congruence. destruct Hg as (Hn & _).
  unfold ecma_deref_bigint. apply (deref_primitive_spec X held m w p n (BLOCK_BIGINT r s ds) (fun c => match c with
    | BLOCK_BIGINT _ sign_and_size _ => jmem_heap_free_block p (ECMA_BIGINT_GET_BYTE_SIZE (ECMA_BIGINT_GET_SIZE sign_and_size) + sizeof_ecma_extended_primitive_t)
    | _ => fault end)); try assumption; [exact I |].
  intros held1 w1 Hheld1 Hc1 _ Hst1 HX. cbn [bump]. rewrite <- Hn. eapply runs_free_parked; [exact Hst1 | exact HX |]. intros w' Hst' _.
  exists (delete p m). split; [| apply keeps_refl]. eapply state_ext; [| exact Hst']. intros q. rewrite Hheld1. unfold refers, child. cbn.
  rewrite (bool_decide_eq_false_2 (None = Some q)) by easy. lia.
Qed.

(** ** Values *)

Lemma target_pointer v p : value_target v = Some p -> p = ecma_get_pointer_from_ecma_value v /\ ecma_get_value_type_field v <> ECMA_TYPE_DIRECT
  /\ ecma_get_value_type_field v <> ECMA_TYPE_DIRECT_STRING /\ (ecma_get_value_type_field v = ECMA_TYPE_BIGINT -> v <> ECMA_BIGINT_ZERO).
Proof.
  unfold value_target. cbv zeta. destruct (Z.eqb_spec (ecma_get_value_type_field v) ECMA_TYPE_DIRECT), (Z.eqb_spec (ecma_get_value_type_field v) ECMA_TYPE_DIRECT_STRING),
    (Z.eqb_spec (ecma_get_value_type_field v) ECMA_TYPE_BIGINT), (Z.eqb_spec v ECMA_BIGINT_ZERO); cbn [orb andb]; try discriminate; intros [= <-]; now splits.
Qed.

(** Values without a block *)
Lemma no_target v : value_target v = None -> ecma_get_value_type_field v = ECMA_TYPE_DIRECT \/ ecma_get_value_type_field v = ECMA_TYPE_DIRECT_STRING
  \/ (ecma_get_value_type_field v = ECMA_TYPE_BIGINT /\ v = ECMA_BIGINT_ZERO).
Proof.
  unfold value_target. cbv zeta. destruct (Z.eqb_spec (ecma_get_value_type_field v) ECMA_TYPE_DIRECT), (Z.eqb_spec (ecma_get_value_type_field v) ECMA_TYPE_DIRECT_STRING),
    (Z.eqb_spec (ecma_get_value_type_field v) ECMA_TYPE_BIGINT), (Z.eqb_spec v ECMA_BIGINT_ZERO); cbn [orb andb]; try discriminate; auto.
Qed.

Notation free_value := (ecma_free_value external_string_free_callback).

Lemma released_same X held m w : state X held m w -> released X held m w.
Proof. intros Hst. exists m. split; [exact Hst | apply keeps_refl]. Qed.

Lemma free_direct fuel v : value_target v = None -> drops (free_value (S fuel)) v.
Proof.
  intros Hv X held m w Hst _ _. unfold disown_value. rewrite Hv. cbn [ecma_free_value]. cbv zeta. destruct (no_target v Hv) as [-> | [-> | [-> ->]]]; now apply released_same.
Qed.

(** The type of a value with a block *)
Ltac type_cases v :=
  let E := fresh "E" in
  destruct (Z.eqb_spec (ecma_get_value_type_field v) ECMA_TYPE_FLOAT) as [E | ?];
  [| destruct (Z.eqb_spec (ecma_get_value_type_field v) ECMA_TYPE_SYMBOL) as [E | ?];
     [| destruct (Z.eqb_spec (ecma_get_value_type_field v) ECMA_TYPE_STRING) as [E | ?];
        [| destruct (Z.eqb_spec (ecma_get_value_type_field v) ECMA_TYPE_OBJECT) as [E | ?];
           [| destruct (Z.eqb_spec (ecma_get_value_type_field v) ECMA_TYPE_BIGINT) as [E | ?]]]]].

(** Values in symbols are strings, so that [fuel] two is enough for any value but an exception *)
Lemma free_string fuel v : ecma_get_value_type_field v = ECMA_TYPE_STRING -> drops (free_value (S fuel)) v.
Proof.
  intros Ht X held m w Hst Hat Hheld. unfold disown_value. destruct (value_target v) as [p |] eqn:Hv.
  2:{ destruct (no_target v Hv) as [E | [E | [E _]]]; rewrite Ht in E; discriminate. }
  destruct (target_pointer v p Hv) as [-> _]. unfold value_at in Hat. rewrite Hv in Hat. destruct Hat as (n & c & Hp & Hkind). rewrite Ht in Hkind.
  destruct (kind_string c (or_introl Hkind)) as [x ->]. cbn [ecma_free_value]. cbv zeta. rewrite Ht. change (ECMA_TYPE_STRING =? ECMA_TYPE_FLOAT) with false.
  change ((ECMA_TYPE_STRING =? ECMA_TYPE_SYMBOL) || (ECMA_TYPE_STRING =? ECMA_TYPE_STRING)) with true. cbv iota.
  apply (deref_string_spec _ X held m w _ n x); try assumption; [now apply Hheld |].
  intros d Hd. destruct (state_block _ _ _ _ _ _ _ Hst Hp) as (c & E & _ & Hg & _). assert (c = BLOCK_STRING x) as -> by congruence.
  exfalso. destruct Hg as [(_ & _ & Hlayout) _]. rewrite Hd in Hlayout. cbn [kind_of] in Hkind. rewrite Hlayout in Hkind. discriminate.
Qed.

Lemma free_value_spec v : ecma_get_value_type_field v <> ECMA_TYPE_ERROR -> drops (free_value VALUE_DEPTH) v.
Proof.
  intros Hne X held m w Hst Hat Hheld. destruct (value_target v) as [p |] eqn:Hv; [| apply (free_direct 1 v Hv X held m w Hst Hat); congruence].
  destruct (target_pointer v p Hv) as (-> & Hd & Hds & Hz). unfold disown_value. pose proof Hat as Hat'. unfold value_at in Hat. rewrite Hv in *. destruct Hat as (n & c & Hp & Hkind).
  specialize (Hheld _ eq_refl). unfold VALUE_DEPTH. cbn [ecma_free_value]. cbv zeta. type_cases v.
  - rewrite E in Hkind. destruct (kind_number c Hkind) as [z ->]. eapply free_number_spec; eassumption.
  - rewrite E in Hkind. destruct (kind_string c (or_intror Hkind)) as [x ->]. cbn [orb]. eapply deref_string_spec; try eassumption.
    intros d Hx. destruct (state_block _ _ _ _ _ _ _ Hst Hp) as (c & E' & _ & _ & Hval). assert (c = BLOCK_STRING x) as -> by congruence.
    destruct (Hval d) as [_ Hallow]; [cbn; now rewrite Hx |]. cbn in Hallow. destruct (value_target d) as [q |] eqn:Hq; [| now apply (free_direct 0)].
    apply (free_string 0), Hallow. discriminate.
  - rewrite E in Hkind. destruct (kind_string c (or_introl Hkind)) as [x ->]. cbn [orb]. pose proof (free_string 1 v E X held m w Hst Hat') as H.
    cbn [ecma_free_value] in H. cbv zeta in H. rewrite E in H. unfold disown_value in H. rewrite Hv in H. apply H. intros q [= <-]. exact Hheld.
  - rewrite E in Hkind. destruct (kind_object c Hkind) as [r ->]. cbn [orb]. eapply deref_object_spec; eassumption.
  - rewrite E in Hkind. destruct (kind_bigint c Hkind) as (r & s & ds & ->). cbn [orb]. destruct (Z.eqb_spec v ECMA_BIGINT_ZERO); [now destruct (Hz E) |]. cbn [negb].
    eapply deref_bigint_spec; eassumption.
  - exfalso. pose proof (kind_values c) as Hk. rewrite Hkind in Hk.
    assert (0 <= ecma_get_value_type_field v) by (apply Z.land_nonneg; right; now unfold ECMA_VALUE_TYPE_MASK). intuition lia.
Qed.

Lemma exception_spec X held m w p n r v : state X held m w -> m !! p = Some (n, Some (BLOCK_EXCEPTION r v)) -> 0 < held p ->
  runs (ecma_deref_exception external_string_free_callback p) w (fun _ w' => released X (drop p held) m w').
Proof.
  intros Hst Hp Hheld. destruct (state_block _ _ _ _ _ _ _ Hst Hp) as (c & E & _ & Hg & Hval). assert (c = BLOCK_EXCEPTION r v) as -> by congruence. destruct Hg as (-> & _).
  destruct (Hval v eq_refl) as [_ Hallow]. cbn in Hallow.
  pose proof (deref_primitive_spec X held m w p _ (BLOCK_EXCEPTION r v) (fun c => match c with
    | BLOCK_EXCEPTION _ value => _ ← free_value VALUE_DEPTH value; jmem_heap_free_block p sizeof_ecma_extended_primitive_t
    | _ => fault end) Hst Hp I Hheld) as H.
  enough (Hlast : runs (read_primitive p ≫= (fun '(refs, block) => let refs := u32 (refs - ECMA_EXTENDED_PRIMITIVE_REF_ONE) in
        _ ← write_block p (block refs);
        if ECMA_EXTENDED_PRIMITIVE_REF_ONE <=? refs then mret tt else (fun c => match c with
          | BLOCK_EXCEPTION _ value => _ ← free_value VALUE_DEPTH value; jmem_heap_free_block p sizeof_ecma_extended_primitive_t
          | _ => fault end) (block refs))) w (fun _ w' => released X (drop p held) m w')).
  { unfold ecma_deref_exception, runs, mbind, W_bind in *. destruct (read_primitive p w) as [[refs block] w1 | |]; try assumption. cbv zeta in *.
    destruct (write_block p (block (u32 (refs - ECMA_EXTENDED_PRIMITIVE_REF_ONE))) w1); try assumption. rewrite Z.ltb_antisym.
    destruct (ECMA_EXTENDED_PRIMITIVE_REF_ONE <=? u32 (refs - ECMA_EXTENDED_PRIMITIVE_REF_ONE)); exact Hlast. }
  apply H. intros held1 w1 Hheld1 Hc1 Hat1 Hst1 HX. cbn [bump]. apply runs_bind.
  assert (Ht : forall q, value_target v = Some q -> 0 < held1 q).
  { intros q Hq. rewrite Hheld1. rewrite (proj2 (refers_child q _)) by exact Hq. unfold drop. pose proof Hst as (_ & _ & _ & Hc). pose proof (counted_held _ _ Hc q). case_bool_decide; subst; lia. }
  eapply runs_mono; [apply (free_value_spec v Hallow _ _ _ _ Hst1 (Hat1 v eq_refl) Ht) |]. intros _ w2 (m2 & Hst2 & Hk2).
  eapply runs_free_parked; [exact Hst2 | exact HX |]. intros w3 Hst3 _.
  assert (Eh : forall q, disown_value v held1 q = drop p held q).
  { intros q. unfold disown_value. destruct (value_target v) as [t |] eqn:Et.
    - unfold drop at 1. rewrite Hheld1. unfold refers, child. cbn [value_in mbind option_bind]. rewrite Et.
      destruct (decide (q = t)) as [-> | Hne]; [rewrite !bool_decide_eq_true_2 by reflexivity; lia |].
      rewrite (bool_decide_eq_false_2 (q = t)), (bool_decide_eq_false_2 (Some t = Some q)) by congruence. lia.
    - rewrite Hheld1. unfold refers, child. cbn [value_in mbind option_bind]. rewrite Et, bool_decide_eq_false_2 by easy. lia. }
  exists m2. split; [eapply state_ext; [exact Eh | exact Hst3] |]. eapply keeps_mono; [| exact Hk2]. intros q Hq. rewrite <- Eh in Hq. exact Hq.
Qed.

Lemma free_value_all_spec v X held m w : state X held m w -> value_at m v -> (forall q, value_target v = Some q -> 0 < held q) ->
  runs (ecma_free_value_all external_string_free_callback v) w (fun _ w' => released X (disown_value v held) m w').
Proof.
  intros Hst Hat Hheld. unfold ecma_free_value_all. destruct (Z.eqb_spec (ecma_get_value_type_field v) ECMA_TYPE_ERROR) as [E | E].
  - unfold disown_value. unfold value_at in Hat. destruct (value_target v) as [p |] eqn:Hv.
    + destruct (target_pointer v p Hv) as [-> _]. destruct Hat as (n & c & Hp & Hkind). rewrite E in Hkind. destruct (kind_exception c Hkind) as (r & d & ->).
      eapply exception_spec; [exact Hst | exact Hp | now apply Hheld].
    + destruct (no_target v Hv) as [E' | [E' | [E' _]]]; rewrite E in E'; discriminate.
  - now apply free_value_spec.
Qed.

(** ** New blocks *)

Lemma new_block p n : 0 < n -> (8 | p) -> 0 <= p -> p + n <= B32 - 8 -> is_block p.
Proof. intros Hn [q ->] H0 H1. split; [lia | now exists q]. Qed.

(** A block that is allocated and filled *)
Lemma runs_new {A} n (c : Z -> content) (k : Z -> W content A) w (Q : A -> world content -> Prop) : owns w -> 0 < n -> (forall p, content_size (c p) <= n) ->
  (forall p w', is_block p -> blocks w !! p = None -> owns w' -> blocks w' = <[p := (n, Some (c p))]> (blocks w) -> notes w' = notes w -> runs (k p) w' Q) ->
  runs (p ← jmem_heap_alloc_block n; _ ← write_block p (c p); k p) w Q.
Proof.
  intros Ho Hn Hsize HQ. apply runs_bind. eapply runs_alloc; [exact Ho | exact Hn |]. intros p h w1 Ho1 Hnew H8 H0 Hend. subst w1. apply runs_bind.
  eapply runs_write; [exact Ho1 | apply lookup_insert_eq | now apply Z.leb_le |]. intros w2 Ho2. subst w2. cbn [blocks heap_of notes] in *.
  apply HQ; [now apply (new_block p n) | exact Hnew | exact Ho2 | | reflexivity]. cbn [blocks]. now rewrite insert_insert_eq.
Qed.

(** The copy of a value is another reference, or another number *)
Definition same_value (m m' : memory) (v v' : Z) : Prop :=
  ecma_get_value_type_field v' = ecma_get_value_type_field v /\
  (v' = v \/ exists p p' z, value_target v = Some p /\ value_target v' = Some p' /\ block_at m p = Some (BLOCK_NUMBER z) /\ block_at m' p' = Some (BLOCK_NUMBER z)).

(** The largest count of references *)
Definition has_room (held : Z -> Z) (m : memory) (v : Z) : Prop :=
  match value_target v with Some p => held p + inner p m < 134217726 | None => True end.

Lemma value_at_keeps m m' v : keeps (fun _ => True) m m' -> value_at m v -> value_at m' v.
Proof.
  intros Hk. unfold value_at. destruct (value_target v) as [p |]; [| easy]. intros (n & c & Hp & Hkind). destruct (Hk p n c I Hp) as (c' & Hp' & E). exists n, c'. split; [exact Hp' |].
  rewrite <- Hkind. assert (Hkind' : forall d, kind_of (erase d) = kind_of d).
  { intros [x | | | | |]; try reflexivity. cbn. unfold ECMA_STRING_GET_CONTAINER. cbn [refs_and_container with_refs]. rewrite <- Z.land_assoc. reflexivity. }
  now rewrite <- (Hkind' c'), E, Hkind'.
Qed.

Lemma float_value p : is_block p -> ecma_get_value_type_field (ecma_make_float_value p) = ECMA_TYPE_FLOAT /\ value_target (ecma_make_float_value p) = Some p.
Proof.
  intros Hp. unfold ecma_make_float_value. rewrite tagged_value by (unfold ECMA_TYPE_FLOAT; (exact Hp || lia)).
  assert (Ht : ecma_get_value_type_field (p + 8 + ECMA_TYPE_FLOAT) = ECMA_TYPE_FLOAT) by (apply value_type; [exact Hp | unfold ECMA_TYPE_FLOAT; lia]).
  split; [exact Ht |]. unfold value_target. rewrite Ht. cbn [Z.eqb ECMA_TYPE_FLOAT ECMA_TYPE_DIRECT ECMA_TYPE_DIRECT_STRING ECMA_TYPE_BIGINT orb andb].
  change (2 =? 5)%positive with false. change (2 =? 6)%positive with false. cbn [orb andb]. f_equal. apply (value_pointer p 2); [exact Hp | lia].
Qed.

Lemma copy_value_spec held w v : good held w -> value_at (blocks w) v -> ecma_get_value_type_field v <> ECMA_TYPE_ERROR -> has_room held (blocks w) v ->
  runs (ecma_copy_value v) w (fun v' w' => good (own_value v' held) w' /\ value_at (blocks w') v' /\ same_value (blocks w) (blocks w') v v'
    /\ keeps (fun _ => True) (blocks w) (blocks w') /\ notes w' = notes w).
Proof.
  intros Hgood Hat Hne Hroom. pose proof Hgood as [Ho Hc]. unfold ecma_copy_value. cbv zeta.
  assert (Hsame : forall m m', same_value m m' v v) by (intros; split; [reflexivity | now left]).
  destruct (value_target v) as [p |] eqn:Hv.
  2:{ assert (Hr : runs (mret v) w (fun v' w' => good (own_value v' held) w' /\ value_at (blocks w') v' /\ same_value (blocks w) (blocks w') v v'
        /\ keeps (fun _ => True) (blocks w) (blocks w') /\ notes w' = notes w)).
      { apply runs_ret. unfold own_value. rewrite Hv. splits; try assumption; [apply Hsame | apply keeps_refl | reflexivity]. }
      destruct (no_target v Hv) as [-> | [-> | [-> E]]]; try exact Hr. rewrite E in *. exact Hr. }
  destruct (target_pointer v p Hv) as (-> & Hd & Hds & Hz). set (p := ecma_get_pointer_from_ecma_value v) in *. unfold has_room in Hroom. rewrite Hv in Hroom.
  (* a counted block *)
  assert (Href : forall (f : W content unit), runs f w (fun _ w' => exists m', state ∅ (take p held) m' w' /\ keeps (fun _ => True) (blocks w) m' /\ notes w' = notes w) ->
    runs (_ ← f; mret v) w (fun v' w' => good (own_value v' held) w' /\ value_at (blocks w') v' /\ same_value (blocks w) (blocks w') v v'
        /\ keeps (fun _ => True) (blocks w) (blocks w') /\ notes w' = notes w)).
  { intros f Hf. apply runs_bind. eapply runs_mono; [exact Hf |]. intros _ w' (m' & (Ho' & Hb' & _ & Hc') & Hk & Hn'). apply runs_ret.
    rewrite (left_id_L ∅ (∪)) in Hb'. subst m'. unfold own_value. rewrite Hv. splits; try assumption; [split; assumption | now apply (value_at_keeps (blocks w)) | apply Hsame]. }
  pose proof Hat as Hat'. unfold value_at in Hat'. rewrite Hv in Hat'. destruct Hat' as (n & c & Hp & Hkind). apply good_state in Hgood. type_cases v.
  - rewrite E in Hkind. destruct (kind_number c Hkind) as [z ->]. apply runs_bind. eapply runs_reading; [unfold block_at; fold p; rewrite Hp; reflexivity |].
    apply (runs_new 8 (fun _ => BLOCK_NUMBER z)); [exact Ho | lia | intros _; reflexivity || (now vm_compute) |]. intros q w' Hq Hnew Ho' Hb' Hn'. apply runs_ret. destruct (float_value q Hq) as [Ht Htarget].
    unfold own_value. rewrite Htarget. splits.
    + split; [exact Ho' |]. rewrite Hb'. apply (counted_insert held); try assumption; try easy.
      * intros r. unfold take, refers, child. cbn. rewrite (bool_decide_eq_false_2 (None = Some r)) by easy. lia.
      * intros r. unfold take. pose proof (counted_held _ _ Hc r). case_bool_decide; lia.
    + unfold value_at. rewrite Htarget, Hb', lookup_insert_eq. exists 8, (BLOCK_NUMBER z). split; [reflexivity | now rewrite Ht].
    + split; [congruence |]. right. exists p, q, z. splits; try assumption; [unfold block_at; now rewrite Hp | unfold block_at; now rewrite Hb', lookup_insert_eq].
    + rewrite Hb'. now apply keeps_fresh.
    + exact Hn'.
  - rewrite E in Hkind. destruct (kind_string c (or_intror Hkind)) as [x ->]. cbn [orb]. apply Href. eapply ref_string_spec; [exact Hgood | exact Hp | lia].
  - rewrite E in Hkind. destruct (kind_string c (or_introl Hkind)) as [x ->]. cbn [orb]. apply Href. eapply ref_string_spec; [exact Hgood | exact Hp | lia].
  - rewrite E in Hkind. destruct (kind_object c Hkind) as [r ->]. cbn [orb]. rewrite E. change (ECMA_TYPE_OBJECT =? ECMA_TYPE_BIGINT) with false. cbv iota. apply Href.
    eapply ref_object_spec; [exact Hgood | exact Hp | lia].
  - rewrite E in Hkind. destruct (kind_bigint c Hkind) as (r & s & ds & ->). cbn [orb]. destruct (Z.eqb_spec v ECMA_BIGINT_ZERO); [now destruct (Hz E) |]. cbn [negb]. apply Href.
    eapply ref_primitive_spec; [exact Hgood | exact Hp | exact I | lia].
  - exfalso. pose proof (kind_values c) as Hk. rewrite Hkind in Hk.
    assert (0 <= ecma_get_value_type_field v) by (apply Z.land_nonneg; right; now unfold ECMA_VALUE_TYPE_MASK). intuition lia.
Qed.
End Release.

(** ** Nothing is lost *)

Lemma inner_positive p m : 0 < inner p m -> exists q n c, m !! q = Some (n, Some c) /\ child c = Some p.
Proof.
  unfold inner. apply (map_fold_weak_ind (fun k (m : memory) => 0 < k -> exists q n c, m !! q = Some (n, Some c) /\ child c = Some p)); [lia |].
  intros q [n b] m' k Hq IH Hk. cbn [snd] in Hk. destruct (Z.eq_dec (refers p b) 0) as [E | E].
  - destruct IH as (r & n' & c & Hr & Hc); [lia |]. exists r, n', c. split; [| exact Hc]. rewrite lookup_insert_ne; [exact Hr |]. intros ->. congruence.
  - destruct b as [c |]; [| now cbn in E]. exists q, n, c. split; [apply lookup_insert_eq |]. apply refers_child. pose proof (refers_range p (Some c)). lia.
Qed.

(** Objects belong to the garbage collector, static strings to the literal pool *)
Definition released_by_count (c : content) : Prop :=
  match c with BLOCK_OBJECT _ => False | BLOCK_STRING x => ECMA_STRING_IS_STATIC x = false | _ => True end.

Lemma block_referred held m p n c : counted held m -> held p = 0 -> m !! p = Some (n, Some c) -> released_by_count c ->
  exists q k d, m !! q = Some (k, Some d) /\ child d = Some p.
Proof.
  intros Hc H0 Hp Hr. destruct (counted_block _ _ Hc p n _ Hp) as (c' & E & _ & Hg & _). assert (c' = c) as -> by congruence. apply inner_positive. rewrite H0 in Hg.
  destruct c as [x | | | r | r v | r s ds]; cbn in Hg, Hr; try contradiction; try lia. destruct Hg as [_ [Hs | (_ & _ & Hk)]]; [congruence | lia].
Qed.

(** The kinds of a block and of the block that refers to it *)
Lemma child_kinds held m p q n k c d : counted held m -> m !! p = Some (n, Some c) -> m !! q = Some (k, Some d) -> child d = Some p ->
  kind_of c <> ECMA_TYPE_ERROR /\ ((kind_of d = ECMA_TYPE_SYMBOL /\ kind_of c = ECMA_TYPE_STRING) \/ kind_of d = ECMA_TYPE_ERROR).
Proof.
  intros Hc Hp Hq Hchild. destruct (counted_block _ _ Hc q k _ Hq) as (d' & E & _ & Hg & Hval). assert (d' = d) as -> by congruence.
  unfold child in Hchild. destruct (value_in d) as [v |] eqn:Ev; [| discriminate]. cbn in Hchild. destruct (Hval v eq_refl) as [Hat Hallow].
  unfold value_at in Hat. rewrite Hchild in Hat. destruct Hat as (n' & c' & Hp' & Hkind). assert (c' = c) as -> by congruence. rewrite Hkind.
  destruct d as [x | | | | r v' |]; cbn in Ev; try discriminate.
  - destruct (data x) eqn:Ed; try discriminate. cbn in Hallow. rewrite Hchild in Hallow. specialize (Hallow ltac:(discriminate)). rewrite Hallow.
    destruct Hg as [(_ & _ & Hlayout) _]. rewrite Ed in Hlayout. split; [discriminate |]. left. cbn. now rewrite Hlayout.
  - cbn in Hallow. split; [exact Hallow | now right].
Qed.

Lemma nothing_left held m : counted held m -> (forall p, held p = 0) -> (forall p n c, m !! p = Some (n, Some c) -> released_by_count c) -> m = ∅.
Proof.
  intros Hc H0 Hr. apply map_empty. intros p. destruct (m !! p) as [[n b] |] eqn:Hp; [exfalso | reflexivity].
  destruct (counted_block _ _ Hc p n b Hp) as (c & -> & _). destruct (block_referred held m p n c Hc (H0 p) Hp (Hr _ _ _ Hp)) as (q & k & d & Hq & Hd).
  destruct (block_referred held m q k d Hc (H0 q) Hq (Hr _ _ _ Hq)) as (r & l & e & Hre & He).
  destruct (child_kinds held m p q n k c d Hc Hp Hq Hd) as [_ Hk1]. destruct (child_kinds held m q r k l d e Hc Hq Hre He) as [Hne Hk2].
  destruct (block_referred held m r l e Hc (H0 r) Hre (Hr _ _ _ Hre)) as (t & j & f & Ht & Hf).
  destruct (child_kinds held m r t l j e f Hc Hre Ht Hf) as [Hne3 _]. unfold ECMA_TYPE_SYMBOL, ECMA_TYPE_STRING, ECMA_TYPE_ERROR in *. intuition lia.
Qed.

(** ** Properties *)

Lemma counted_empty : counted (fun _ => 0) ∅.
Proof.
  split.
  - intros p n b Hp. rewrite lookup_empty in Hp. discriminate.
  - intros p. lia.
  - intros p Hp. unfold inner in Hp. rewrite map_fold_empty in Hp. lia.
Qed.

(** C20: copying a value adds one reference and freeing it drops one, the last one
    with the block and everything it owned: in a memory in which every counter is
    the number of references, both end without a fault, every counter is again
    the number of references, a copy is the same value, and no block that is
    still held changes.  The limit on the number of references is the smallest of
    the four limits, that of objects. *)
Theorem ecma_value_references_counted {BH : BlockHeap} callback held (w : world content) v : good held w -> value_at (blocks w) v ->
  (ecma_get_value_type_field v <> ECMA_TYPE_ERROR -> has_room held (blocks w) v ->
    runs (ecma_copy_value v) w (fun v' w' => good (own_value v' held) w' /\ value_at (blocks w') v' /\ same_value (blocks w) (blocks w') v v'
      /\ keeps (fun _ => True) (blocks w) (blocks w')))
  /\ ((forall p, value_target v = Some p -> 0 < held p) ->
    runs (ecma_free_value_all callback v) w (fun _ w' => good (disown_value v held) w' /\ keeps (fun p => 0 < disown_value v held p) (blocks w) (blocks w'))
    /\ (ecma_get_value_type_field v <> ECMA_TYPE_ERROR ->
        runs (ecma_free_value callback VALUE_DEPTH v) w (fun _ w' => good (disown_value v held) w' /\ keeps (fun p => 0 < disown_value v held p) (blocks w) (blocks w')))).
Proof.
  intros Hgood Hat. split.
  - intros Hne Hroom. eapply runs_mono; [now apply (copy_value_spec held) |]. cbv beta. tauto.
  - intros Hheld. apply good_state in Hgood. split.
    + eapply runs_mono; [now apply (free_value_all_spec callback v ∅ held (blocks w)) |]. intros u w' H. now apply released_good.
    + intros Hne. eapply runs_mono; [now apply (free_value_spec callback v Hne ∅ held (blocks w)) |]. intros u w' H. now apply released_good.
Qed.

(** Nothing is lost: when the program holds no reference, and no object and no
    static string is left, no block is left either: no symbol, exception, number
    or string keeps another one alive in a circle. *)
Theorem ecma_values_no_leak {BH : BlockHeap} held (w : world content) : good held w -> (forall p, held p = 0) ->
  (forall p n c, blocks w !! p = Some (n, Some c) -> released_by_count c) -> blocks w = ∅.
Proof. intros [_ Hc]. now apply nothing_left with (held := held). Qed.

(** A symbol with the description "ab" at address 0, in a heap of TopHeap *)
Definition example_string : ecma_string_t := mk_string 19 1294271946 (ASCII 1 [97; 98]).
Definition example_symbol : ecma_string_t := mk_string 21 16 (EXTENDED (ecma_make_string_value 0)).
Definition example_world : @world TopHeap content :=
  @mk_world TopHeap content (mk_top (<[16 := 12]> (<[0 := 11]> ∅)) 4096)
    (<[16 := (12, Some (BLOCK_STRING example_symbol))]> (<[0 := (11, Some (BLOCK_STRING example_string))]> ∅)) [].

(** The description alone *)
Definition string_world : @world TopHeap content :=
  @mk_world TopHeap content (mk_top (<[0 := 11]> ∅) 4096) (<[0 := (11, Some (BLOCK_STRING example_string))]> ∅) [].

Lemma string_world_good : @good TopHeap (take 0 (fun _ => 0)) string_world.
Proof.
  split.
  - split; [reflexivity |]. intros p n Hp. cbn in Hp. rewrite !fmap_insert, fmap_empty in Hp. cbn in Hp.
    apply lookup_insert_Some in Hp as [[_ <-] | [_ Hp]]; [lia |]. rewrite lookup_empty in Hp. discriminate.
  - apply (counted_insert (fun _ => 0)); try apply counted_empty; try easy.
    + split; [lia | now exists 0].
    + split; [| right; split; [reflexivity | split; [reflexivity | lia]]]. split; [split; now vm_compute |]. now split.
    + intros q. unfold take, refers, child. cbn. rewrite (bool_decide_eq_false_2 (None = Some q)) by easy. lia.
    + intros q. unfold take. case_bool_decide; lia.
Qed.

Lemma example_good : @good TopHeap (take 16 (fun _ => 0)) example_world.
Proof.
  split.
  - split; [reflexivity |]. intros p n Hp. cbn in Hp. rewrite !fmap_insert, fmap_empty in Hp. cbn in Hp.
    apply lookup_insert_Some in Hp as [[_ <-] | [_ Hp]]; [lia |]. apply lookup_insert_Some in Hp as [[_ <-] | [_ Hp]]; [lia |]. rewrite lookup_empty in Hp. discriminate.
  - apply (counted_insert (take 0 (fun _ => 0))); try exact (proj2 string_world_good); try easy.
    + split; [lia | now exists 2].
    + split; [| right; split; [reflexivity | split; [reflexivity | lia]]]. split; [split; now vm_compute |]. now split.
    + intros v [= <-]. split; [| now intros _]. exists 11, (BLOCK_STRING example_string). now split.
    + intros q. unfold take, refers, child. cbn [value_in example_symbol data mbind option_bind]. change (value_target (ecma_make_string_value 0)) with (Some 0).
      destruct (decide (q = 0)) as [-> | H0].
      * now rewrite (bool_decide_eq_true_2 (Some 0 = Some 0)).
      * rewrite (bool_decide_eq_false_2 (q = 0)), (bool_decide_eq_false_2 (Some 0 = Some q)) by congruence. lia.
    + intros q. unfold take. case_bool_decide; lia.
Qed.

(** The only reference to the symbol is dropped: symbol and description are gone *)
Lemma ecma_value_references_witness : let v := ecma_make_symbol_value 16 in
  value_at (blocks example_world) v /\ runs (ecma_free_value_all true v) example_world (fun _ w' => good (disown_value v (take 16 (fun _ => 0))) w' /\ blocks w' = ∅).
Proof.
  cbv zeta. assert (Hat : value_at (blocks example_world) (ecma_make_symbol_value 16)) by (exists 12, (BLOCK_STRING example_symbol); now split).
  split; [exact Hat |]. destruct (proj2 (@ecma_value_references_counted TopHeap true _ example_world _ example_good Hat)) as [H _].
  - intros p [= <-]. now vm_compute.
  - assert (E : match ecma_free_value_all true (ecma_make_symbol_value 16) example_world with OK _ w' => Nat.eqb (size (blocks w')) 0 | _ => false end = true) by now vm_compute.
    unfold runs in *. destruct (ecma_free_value_all true (ecma_make_symbol_value 16) example_world) as [u w' | |]; try discriminate.
    split; [apply H | now apply map_size_empty_iff, Nat.eqb_eq].
Defined.

Lemma ecma_values_no_leak_witness : blocks (@mk_world TopHeap content (mk_top ∅ 64) ∅ []) = ∅.
Proof.
  apply (@ecma_values_no_leak TopHeap (fun _ => 0)).
  - split; [split; [reflexivity |] | exact counted_empty]. intros p n Hp. cbn in Hp. rewrite fmap_empty, lookup_empty in Hp. discriminate.
  - reflexivity.
  - intros p n c Hp. cbn in Hp. rewrite lookup_empty in Hp. discriminate.
Defined.
