(* ===== verification/Strings.v ===== *)
(** * Creating, joining and cutting strings: src/jjs-core/ecma/base/ecma-helpers-string.c

    New strings are magic strings, integers or blocks; the functions here choose
    the representation of StringRepr.  Joining appends to a string whose
    reference it takes over. *)
From Stdlib Require Import ZArith Lia Bool List.
From stdpp Require Import base gmap list.
From S2P Require Import Prelude LitChars LitStrings JmemHeap JmemPointers Values BlockHeap MagicStrings StringData Ownership.
Import ListNotations.
#[local] Open Scope Z_scope.

Section Operations.
Context {BH : BlockHeap} (T : magic_tables) (external_string_free_callback : bool).

(** ** Special strings *)

Definition ecma_new_ecma_string_from_magic_string_ex_id (id : Z) : W content Z :=
  let string_id := id + LIT_MAGIC_STRING__COUNT T in
  if string_id <=? ECMA_DIRECT_STRING_MAX_IMM then mret (ECMA_CREATE_DIRECT_STRING ECMA_DIRECT_STRING_MAGIC string_id)
  else
    string_desc_p ← ecma_alloc_string;
    _ ← write_string string_desc_p (mk_string (Z.lor ECMA_STRING_CONTAINER_MAGIC_STRING_EX ECMA_STRING_REF_ONE) (id + LIT_MAGIC_STRING__COUNT T) HEAD);
    mret string_desc_p.

Definition ecma_new_symbol_from_descriptor_string (string_desc : Z) : W content Z :=
  symbol_p ← ecma_alloc_extended_string;
  (* the low bits of the hash are flags of the symbol *)
  _ ← write_string symbol_p (mk_string (Z.lor ECMA_STRING_REF_ONE ECMA_STRING_CONTAINER_SYMBOL) (Z.land (u32 symbol_p) 4294967288) (EXTENDED string_desc));
  mret symbol_p.

Definition ecma_new_non_direct_string_from_uint32 (uint32_number : Z) : W content Z :=
  string_p ← ecma_alloc_string;
  _ ← write_string string_p (mk_string (Z.lor ECMA_STRING_CONTAINER_UINT32_IN_DESC ECMA_STRING_REF_ONE) uint32_number HEAD);
  mret string_p.

Definition ecma_new_ecma_string_from_uint32 (uint32_number : Z) : W content Z :=
  if uint32_number <=? ECMA_DIRECT_STRING_MAX_IMM then mret (ECMA_CREATE_DIRECT_STRING ECMA_DIRECT_STRING_UINT uint32_number)
  else ecma_new_non_direct_string_from_uint32 uint32_number.

(** NULL is [None] *)
Definition ecma_find_special_string (string : list Z) : W content (option Z) :=
  magic_string_id ← reading (fun _ => lit_is_utf8_string_magic T string);
  if negb (magic_string_id =? LIT_MAGIC_STRING__COUNT T) then mret (Some (ecma_get_magic_string magic_string_id))
  else
    match string with
    | [] => fault
    | c :: _ =>
        let array_index := if (LIT_CHAR_0 <=? c) && (c <=? LIT_CHAR_9) then ecma_string_to_array_index string else None in
        match array_index with
        | Some array_index => p ← ecma_new_ecma_string_from_uint32 array_index; mret (Some p)
        | None =>
            if 0 <? lit_get_magic_string_ex_count T then
              magic_string_ex_id ← reading (fun _ => lit_is_ex_utf8_string_magic T string);
              if magic_string_ex_id <? lit_get_magic_string_ex_count T then
                p ← ecma_new_ecma_string_from_magic_string_ex_id magic_string_ex_id; mret (Some p)
              else mret None
            else mret None
        end
    end.

(** ** Blocks *)

(** The header of the block and room for the characters, which the caller stores
    together with the hash.  Bytes that were not stored yet are zeros *)
Definition ecma_new_ecma_string_from_utf8_buffer (length size : Z) : W content Z :=
  let room := repeat 0 (Z.to_nat size) in
  if size <=? 65535 then
    if (length =? size) && (size <=? 256) then
      string_desc_p ← ecma_alloc_string_buffer (size + ECMA_ASCII_STRING_HEADER_SIZE);
      _ ← write_string string_desc_p (mk_string (Z.lor ECMA_STRING_CONTAINER_HEAP_ASCII_STRING ECMA_STRING_REF_ONE) 0 (ASCII (ECMA_ASCII_STRING_SET_SIZE size) room));
      mret string_desc_p
    else
      string_desc_p ← ecma_alloc_string_buffer (size + sizeof_ecma_short_string_t);
      _ ← write_string string_desc_p (mk_string (Z.lor ECMA_STRING_CONTAINER_HEAP_UTF8_STRING ECMA_STRING_REF_ONE) 0 (SHORT (u16 size) (u16 length) room));
      mret string_desc_p
  else
    long_string_p ← ecma_alloc_string_buffer (size + sizeof_ecma_long_string_t);
    _ ← write_string long_string_p (mk_string (Z.lor ECMA_STRING_CONTAINER_LONG_OR_EXTERNAL_STRING ECMA_STRING_REF_ONE) 0 (LONG size length room));
    mret long_string_p.

(** Stores of the hash and of all characters *)
Definition with_chars (x : ecma_string_t) (hash : Z) (chars : list Z) : option ecma_string_t :=
  let fill buffer (d : list Z -> string_data) :=
    if zlength chars =? zlength buffer then Some (mk_string (refs_and_container x) hash (d chars)) else None in
  match data x with
  | ASCII size_field buffer => fill buffer (ASCII size_field)
  | SHORT size length buffer => fill buffer (SHORT size length)
  | LONG size length buffer => fill buffer (LONG size length)
  | _ => None
  end.
Definition fill_string (string_p hash : Z) (chars : list Z) : W content unit :=
  x ← read_string string_p;
  match with_chars x hash chars with Some x => write_string string_p x | None => fault end.

Definition ecma_new_ecma_string_from_ascii (string : list Z) : W content Z :=
  special ← ecma_find_special_string string;
  match special with
  | Some string_desc_p => mret string_desc_p
  | None =>
      string_desc_p ← ecma_new_ecma_string_from_utf8_buffer (zlength string) (zlength string);
      _ ← fill_string string_desc_p (lit_utf8_string_calc_hash string) string;
      mret string_desc_p
  end.

Definition ecma_new_ecma_string_from_utf8 (string : list Z) : W content Z :=
  special ← ecma_find_special_string string;
  match special with
  | Some string_desc_p => mret string_desc_p
  | None =>
      length ← reading (fun _ => lit_utf8_string_length string);
      string_desc_p ← ecma_new_ecma_string_from_utf8_buffer length (zlength string);
      _ ← fill_string string_desc_p (lit_utf8_string_calc_hash string) string;
      mret string_desc_p
  end.

Definition ecma_new_ecma_string_from_utf16 (string : list Z) : W content Z :=
  match string with
  | [] => mret (ecma_get_magic_string LIT_MAGIC_STRING__EMPTY)
  | _ =>
      let '(character_count, cesu8_size) := lit_utf16_as_cesu8_measure string in
      string_desc_p ← ecma_new_ecma_string_from_utf8_buffer character_count cesu8_size;
      let data := lit_convert_utf16_string_to_cesu8_string string cesu8_size in
      _ ← fill_string string_desc_p (lit_utf8_string_calc_hash data) data;
      mret string_desc_p
  end.

(** lit-char-helpers.c *)
Definition lit_code_point_to_cesu8_bytes (code_point : Z) : list Z :=
  if code_point <? 128 then [u8 code_point]
  else if code_point <? 2048 then
    [u8 (Z.lor 192 (Z.land (Z.shiftr code_point 6) 31)); u8 (Z.lor 128 (Z.land code_point 63))]
  else if code_point <? 65536 then
    [u8 (Z.lor 224 (Z.land (Z.shiftr code_point 12) 15)); u8 (Z.lor 128 (Z.land (Z.shiftr code_point 6) 63)); u8 (Z.lor 128 (Z.land code_point 63))]
  else
    let code_point := code_point - 65536 in
    [u8 (Z.lor 224 13); u8 (Z.lor (Z.lor 128 32) (Z.land (Z.shiftr code_point 16) 15)); u8 (Z.lor 128 (Z.land (Z.shiftr code_point 10) 63));
     u8 (Z.lor 224 13); u8 (Z.lor (Z.lor 128 48) (Z.land (Z.shiftr code_point 6) 15)); u8 (Z.lor 128 (Z.land code_point 63))].

Definition lit_code_point_get_cesu8_length (code_point : Z) : Z :=
  if code_point <? 128 then 1 else if code_point <? 2048 then 2 else if code_point <? 65536 then 3 else 2 * 3.

Definition lit_four_byte_utf8_char_to_cesu8 (source : list Z) : option (list Z) :=
  match source with
  | a :: b :: c :: d :: _ =>
      let code_point := u32 (Z.shiftl (Z.land a 7) 18) in
      let code_point := Z.lor code_point (u32 (Z.shiftl (Z.land b 63) 12)) in
      let code_point := Z.lor code_point (u32 (Z.shiftl (Z.land c 63) 6)) in
      let code_point := Z.lor code_point (Z.land d 63) in
      Some (lit_code_point_to_cesu8_bytes code_point)
  | _ => None
  end.

Definition is_4_byte (c : Z) : bool := Z.land c 248 =? 240.

(** Length and additional size of the conversion; the loop advances in [string] *)
Fixpoint converted_length_loop (fuel : nat) (string : list Z) (length size : Z) : option (Z * Z) :=
  match string, fuel with
  | [], _ => Some (length, size)
  | _, O => None
  | c :: _, S fuel =>
      if is_1_byte c then converted_length_loop fuel (advance 1 string) (length + 1) size
      else if is_2_byte c then converted_length_loop fuel (advance 2 string) (length + 1) size
      else if is_3_byte c then converted_length_loop fuel (advance 3 string) (length + 1) size
      else converted_length_loop fuel (advance 4 string) (length + 2) (size + 2)
  end.

Fixpoint convert_loop (fuel : nat) (string : list Z) : option (list Z) :=
  match string, fuel with
  | [], _ => Some []
  | _, O => None
  | c :: rest, S fuel =>
      if is_4_byte c then
        match lit_four_byte_utf8_char_to_cesu8 string with
        | Some bytes => option_map (app bytes) (convert_loop fuel (advance 4 string))
        | None => None
        end
      else option_map (cons c) (convert_loop fuel rest)
  end.

Definition ecma_new_ecma_string_from_utf8_converted_to_cesu8 (string : list Z) : W content Z :=
  '(converted_string_length, converted_string_size) ← reading (fun _ => converted_length_loop (length string) string 0 0);
  if converted_string_size =? 0 then ecma_new_ecma_string_from_utf8 string
  else
    let converted_string_size := u32 (converted_string_size + zlength string) in
    string_desc_p ← ecma_new_ecma_string_from_utf8_buffer converted_string_length converted_string_size;
    data ← reading (fun _ => convert_loop (length string) string);
    _ ← fill_string string_desc_p (lit_utf8_string_calc_hash data) data;
    mret string_desc_p.

(** The embedder gets its buffer back when the string has another representation *)
Definition ecma_new_ecma_external_string_from_cesu8 (string : list Z) (user : Z) : W content Z :=
  let free_cb : W content unit := if external_string_free_callback then note (string, user) else mret tt in
  if zlength string <? sizeof_ecma_external_string_t - sizeof_ecma_short_string_t then
    string_desc_p ← ecma_new_ecma_string_from_utf8 string;
    _ ← free_cb;
    mret string_desc_p
  else
    special ← ecma_find_special_string string;
    match special with
    | Some string_desc_p => _ ← free_cb; mret string_desc_p
    | None =>
        external_string_p ← ecma_alloc_external_string;
        length ← reading (fun _ => lit_utf8_string_length string);
        _ ← write_string external_string_p
              (mk_string (Z.lor ECMA_STRING_CONTAINER_LONG_OR_EXTERNAL_STRING ECMA_STRING_REF_ONE) (lit_utf8_string_calc_hash string) (EXTERNAL (zlength string) length string user));
        mret external_string_p
    end.

Definition ecma_new_ecma_string_from_code_unit (code_unit : Z) : W content Z := ecma_new_ecma_string_from_utf8 (lit_code_unit_to_utf8 code_unit).
Definition ecma_new_ecma_string_from_code_units (first_code_unit second_code_unit : Z) : W content Z :=
  ecma_new_ecma_string_from_utf8 (lit_code_unit_to_utf8 first_code_unit ++ lit_code_unit_to_utf8 second_code_unit).

(** ** Joining *)

Notation deref := (ecma_deref_ecma_string external_string_free_callback).

Definition ecma_append_chars_to_string (string1_p : Z) (cesu8_string2 : list Z) (cesu8_string2_length : Z) : W content Z :=
  if ecma_string_is_empty string1_p then ecma_new_ecma_string_from_utf8 cesu8_string2
  else
    '(cesu8_string1, cesu8_string1_length, flags) ← reading (fun m => ecma_string_get_chars T m string1_p ECMA_STRING_FLAG_IS_ASCII);
    let new_size := u32 (zlength cesu8_string1 + zlength cesu8_string2) in
    if new_size <? Z.lor (zlength cesu8_string1) (zlength cesu8_string2) then fatal
    else
      magic_string_id ← reading (fun _ => lit_is_utf8_string_pair_magic T cesu8_string1 cesu8_string2);
      if negb (magic_string_id =? LIT_MAGIC_STRING__COUNT T) then _ ← deref string1_p; mret (ecma_get_magic_string magic_string_id)
      else
        let array_index :=
          if negb (Z.land flags ECMA_STRING_FLAG_IS_UINT32 =? 0) && (new_size <=? ECMA_MAX_CHARS_IN_STRINGIFIED_UINT32)
          then ecma_string_to_array_index (cesu8_string1 ++ cesu8_string2) else None in
        match array_index with
        | Some array_index => _ ← deref string1_p; ecma_new_ecma_string_from_uint32 array_index
        | None =>
            magic_string_ex_id ←
              (if 0 <? lit_get_magic_string_ex_count T then reading (fun _ => lit_is_ex_utf8_string_pair_magic T cesu8_string1 cesu8_string2)
               else mret (lit_get_magic_string_ex_count T));
            if magic_string_ex_id <? lit_get_magic_string_ex_count T then _ ← deref string1_p; ecma_new_ecma_string_from_magic_string_ex_id magic_string_ex_id
            else
              string_desc_p ← ecma_new_ecma_string_from_utf8_buffer (u32 (cesu8_string1_length + cesu8_string2_length)) new_size;
              hash_start ← (if negb (Z.land flags ECMA_STRING_FLAG_REHASH_NEEDED =? 0) then mret (lit_utf8_string_calc_hash cesu8_string1)
                            else x ← read_string string1_p; mret (u x));
              _ ← fill_string string_desc_p (lit_utf8_string_hash_combine hash_start cesu8_string2) (cesu8_string1 ++ cesu8_string2);
              _ ← deref string1_p;
              mret string_desc_p
        end.

Definition ecma_concat_ecma_strings (string1_p string2_p : Z) : W content Z :=
  if ecma_string_is_empty string1_p then _ ← ecma_ref_ecma_string string2_p; mret string2_p
  else if ecma_string_is_empty string2_p then mret string1_p
  else
    '(cesu8_string2, cesu8_string2_length, _) ← reading (fun m => ecma_string_get_chars T m string2_p ECMA_STRING_FLAG_IS_ASCII);
    ecma_append_chars_to_string string1_p cesu8_string2 cesu8_string2_length.

(** ** Cutting *)

(** The bytes after [count] characters, and those characters *)
Fixpoint skip_characters (count : nat) (start : list Z) (passed : list Z) : option (list Z * list Z) :=
  match count with
  | O => Some (rev passed, start)
  | S count =>
      match start with
      | [] => None
      | c :: _ =>
          let size := Z.to_nat (lit_get_unicode_char_size_by_utf8_first_byte c) in
          skip_characters count (skipn size start) (rev (firstn size start) ++ passed)
      end
  end.

Definition ecma_string_substr (string_p start_pos end_pos : Z) : W content Z :=
  string_length ← reading (fun m => ecma_string_get_length T m string_p);
  if end_pos <=? start_pos then mret (ecma_get_magic_string LIT_MAGIC_STRING__EMPTY)
  else
    let end_pos := end_pos - start_pos in
    '(start, _, _) ← reading (fun m => ecma_string_get_chars T m string_p ECMA_STRING_FLAG_EMPTY);
    if string_length =? zlength start then
      ecma_new_ecma_string_from_utf8 (firstn (Z.to_nat end_pos) (skipn (Z.to_nat start_pos) start))
    else
      '(_, start) ← reading (fun _ => skip_characters (Z.to_nat start_pos) start []);
      '(substring, _) ← reading (fun _ => skip_characters (Z.to_nat end_pos) start []);
      ecma_new_ecma_string_from_utf8 substring.

Definition ecma_string_trim (string_p : Z) : W content Z :=
  '(utf8_str, _, _) ← reading (fun m => ecma_string_get_chars T m string_p ECMA_STRING_FLAG_IS_ASCII);
  if 0 <? zlength utf8_str then
    utf8_str ← reading (fun _ => ecma_string_trim_helper utf8_str);
    ecma_new_ecma_string_from_utf8 utf8_str
  else mret (ecma_get_magic_string LIT_MAGIC_STRING__EMPTY).
End Operations.
