(* ===== verification/StringTheory.v ===== *)
(** * New strings denote what they were made from

    The functions of Strings in a counted memory: the result is the string with
    the expected characters in the representation of StringRepr, it is one more
    reference of the program, and every string that is still held is
    unchanged. *)
From Stdlib Require Import ZArith Lia Bool List.
From stdpp Require Import base gmap list.
From S2P Require Import Prelude LitChars LitStrings JmemHeap JmemPointers Values BlockHeap MagicStrings StringData Decimal StringRepr.
From S2P Require Import StringAccess Ownership Counting Release Strings.
Import ListNotations.
#[local] Open Scope Z_scope.

(** The reference that a string pointer is *)
Definition own_string (p : Z) (held : Z -> Z) : Z -> Z := if ECMA_IS_DIRECT_STRING p then held else take p held.
Definition disown_string (p : Z) (held : Z -> Z) : Z -> Z := if ECMA_IS_DIRECT_STRING p then held else drop p held.

(** The program holds the string [p] *)
Definition holds_string (held : Z -> Z) (p : Z) : Prop := ECMA_IS_DIRECT_STRING p = false -> 0 < held p.

(** The layout that is chosen for a length and a size *)
Definition layout (length size : Z) : Z * Z * (list Z -> string_data) :=
  if size <=? 65535 then
    if (length =? size) && (size <=? 256) then (size + 9, 19, ASCII (u8 (size - 1))) else (size + 12, 16, SHORT (u16 size) (u16 length))
  else (size + 24, 17, LONG size length).

Lemma keeps_string T alive m m' p s : keeps alive m m' -> (ECMA_IS_DIRECT_STRING p = false -> alive p) -> string_is T m p s -> string_is T m' p s.
Proof.
  intros Hk Ha (Ht & Hs & H). split; [exact Ht |]. split; [exact Hs |].
  assert (Hblock : is_block p -> forall x, string_at m p = Some x ->
    exists y, string_at m' p = Some y /\ u y = u x /\ data y = data x /\ ECMA_STRING_GET_CONTAINER y = ECMA_STRING_GET_CONTAINER x).
  { intros Hb x Hx. unfold string_at, block_at in Hx. destruct (m !! p) as [[n [[y | | | | |] |]] |] eqn:Hp; try discriminate. assert (y = x) as -> by congruence.
    destruct (Hk p n _ (Ha (block_not_direct p Hb)) Hp) as (c & Hp' & E). destruct c as [y | | | | |]; try discriminate. exists y.
    unfold string_at, block_at. rewrite Hp'. split; [reflexivity |]. cbn [erase] in E. destruct x as [rx ux dx], y as [ry uy dy]. cbn in E.
    assert (Ey : uy = ux /\ dy = dx /\ Z.land ry 15 = Z.land rx 15) by (unfold with_refs in E; cbn in E; now splits; congruence). destruct Ey as (-> & -> & El).
    splits; try reflexivity. unfold ECMA_STRING_GET_CONTAINER. cbn [refs_and_container]. change ECMA_STRING_CONTAINER_MASK with (Z.land 15 7). now rewrite !Z.land_assoc, El. }
  destruct (special T s) as [[id | n | id] |]; try exact H.
  - destruct (n <=? ECMA_DIRECT_STRING_MAX_IMM); [exact H |]. destruct H as (Hb & x & Hx & Hd & Hc & Hu). split; [exact Hb |].
    destruct (Hblock Hb x Hx) as (y & Hy & E1 & E2 & E3). exists y. split; [exact Hy |]. unfold uint32_descriptor. now rewrite E1, E2, E3.
  - destruct H as (Hb & x & Hx & Hh). split; [exact Hb |]. destruct (Hblock Hb x Hx) as (y & Hy & E1 & E2 & E3). exists y. split; [exact Hy |].
    unfold heap_string. now rewrite E1, E2, E3.
Qed.

Section Theory.
Context {BH : BlockHeap} (T : magic_tables) (callback : bool) (HT : tables_ok T) (HD : tables_direct T).

(** A new string [s]; [h] is what the program held before, without the references that were consumed *)
Definition made (h : Z -> Z) (m : memory) (s : list Z) (p : Z) (w' : world content) : Prop :=
  string_is T (blocks w') p s /\ good (own_string p h) w' /\ keeps (fun q => 0 < h q) m (blocks w').

Lemma string_at_insert (m : memory) p n x : string_at (<[p := (n, Some (BLOCK_STRING x))]> m) p = Some x.
Proof. unfold string_at, block_at. now rewrite lookup_insert_eq. Qed.

(** A new block of a string *)
Lemma good_new held m w' p n x : counted held m -> is_block p -> m !! p = None -> owns w' -> blocks w' = <[p := (n, Some (BLOCK_STRING x))]> m ->
  block_good n (BLOCK_STRING x) 1 -> value_in (BLOCK_STRING x) = None -> good (own_string p held) w' /\ keeps (fun q => 0 < held q) m (blocks w').
Proof.
  intros Hc Hb Hnew Ho' Hb' Hg Hv. unfold own_string. rewrite block_not_direct by exact Hb. rewrite Hb'. split; [| now apply keeps_fresh]. split; [exact Ho' |]. rewrite Hb'.
  assert (Hno : forall q, refers q (Some (BLOCK_STRING x)) = 0) by (intros q; unfold refers, child; rewrite Hv; cbn; now rewrite bool_decide_eq_false_2).
  apply (counted_insert held); try assumption.
  - intros v E. congruence.
  - unfold child. rewrite Hv. discriminate.
  - intros q. rewrite Hno. unfold take. lia.
  - intros q. unfold take. pose proof (counted_held _ _ Hc q). case_bool_decide; lia.
Qed.

(** A direct string *)
Lemma made_direct held w s type v : good held w -> string_is T (blocks w) (ECMA_CREATE_DIRECT_STRING type v) s -> 0 <= type < 4 -> 0 <= v <= ECMA_DIRECT_STRING_MAX_IMM ->
  made held (blocks w) s (ECMA_CREATE_DIRECT_STRING type v) w.
Proof.
  intros Hgood Hs Ht Hv. split; [exact Hs |]. unfold own_string. destruct (direct_fields type v Ht Hv) as (-> & _). split; [exact Hgood | apply keeps_refl].
Qed.

Lemma decimal_text n : is_u32 n -> is_text (decimal n) /\ zlength (decimal n) < B32 - 1.
Proof. intros Hn. split; [apply text_ascii; now apply decimal_ascii | destruct (decimal_spec n Hn) as (_ & Hl & _); lia]. Qed.

Lemma new_uint32_spec held w n : good held w -> is_u32 n -> runs (ecma_new_ecma_string_from_uint32 n) w (made held (blocks w) (decimal n)).
Proof.
  intros Hgood Hn. destruct (decimal_text n Hn) as [Htext Hsize].
  assert (Hspecial : special T (decimal n) = Some (UINT n)) by (apply special_number; [exact HT |]; apply number_of_some; now split).
  unfold ecma_new_ecma_string_from_uint32. destruct (Z.leb_spec n ECMA_DIRECT_STRING_MAX_IMM) as [Hle | Hgt].
  - apply runs_ret, made_direct; [exact Hgood | | unfold ECMA_DIRECT_STRING_UINT; lia | unfold is_u32 in Hn; lia].
    split; [exact Htext |]. split; [exact Hsize |]. rewrite Hspecial. destruct (Z.leb_spec n ECMA_DIRECT_STRING_MAX_IMM); [reflexivity | lia].
  - unfold ecma_new_non_direct_string_from_uint32, ecma_alloc_string, write_string. pose proof (proj1 Hgood) as Ho.
    apply (runs_new 8 (fun _ => BLOCK_STRING (mk_string (Z.lor ECMA_STRING_CONTAINER_UINT32_IN_DESC ECMA_STRING_REF_ONE) n HEAD))); [exact Ho | lia | now intros _ |].
    intros p w' Hb Hnew Ho' Hb' _. apply runs_ret. split.
    + split; [exact Htext |]. split; [exact Hsize |]. rewrite Hspecial. destruct (Z.leb_spec n ECMA_DIRECT_STRING_MAX_IMM); [lia |]. split; [exact Hb |].
      eexists. rewrite Hb', string_at_insert. split; [reflexivity |]. now split.
    + eapply (good_new held (blocks w) w' p 8); try eassumption; [exact (proj2 Hgood) | | reflexivity]. split; [| right; now splits]. split; [split; now vm_compute |]. split; [reflexivity | now left].
Qed.

(** ** Special strings *)

Lemma find_special_spec held w s : good held w -> is_text s -> zlength s < B32 - 1 ->
  runs (ecma_find_special_string T s) w (fun r w' => match r with Some p => made held (blocks w) s p w' | None => special T s = None /\ s <> [] /\ w' = w end).
Proof.
  intros Hgood Htext Hsize. pose proof (magic_count T HT) as Hcount. pose proof (zlength_nonneg (lit_magic_strings T)) as Hnn.
  assert (Hno : number_of s = (match s with c :: _ => if (LIT_CHAR_0 <=? c) && (c <=? LIT_CHAR_9) then ecma_string_to_array_index s else None | [] => None end)) by apply number_of_code.
  unfold ecma_find_special_string. apply runs_bind. eapply runs_reading; [apply (is_magic_spec HT s); lia |].
  destruct (index_of s (lit_magic_strings T)) as [id |] eqn:Ei.
  - pose proof (proj1 (index_of_some _ _ _ (magic_sorted T HT)) Ei) as Hat. apply at_index_bound in Hat.
    destruct (Z.eqb_spec id (LIT_MAGIC_STRING__COUNT T)); [lia |]. cbn [negb]. apply runs_ret. apply made_direct; [exact Hgood | | unfold ECMA_DIRECT_STRING_MAGIC; lia | apply (ids_direct T HT); lia].
    split; [exact Htext |]. split; [exact Hsize |]. unfold special. now rewrite Ei.
  - rewrite Z.eqb_refl. cbn [negb]. destruct s as [| c rest] eqn:Es.
    { exfalso. pose proof (magic_empty T HT) as He. apply (index_of_some _ _ _ (magic_sorted T HT)) in He. congruence. }
    rewrite <- Es in *. cbv zeta. assert (Hno' : (if (LIT_CHAR_0 <=? c) && (c <=? LIT_CHAR_9) then ecma_string_to_array_index s else None) = number_of s) by (rewrite Hno, Es; reflexivity).
    rewrite Hno'. destruct (number_of s) as [n |] eqn:En.
    + apply number_of_some in En as [Hn E]. rewrite E. apply runs_bind. eapply runs_mono; [now apply (new_uint32_spec held) |]. intros p w' Hm. apply runs_ret. exact Hm.
    + pose proof (is_ex_magic_spec HT s ltac:(lia)) as Hex. unfold lit_get_magic_string_ex_count in *.
      assert (Hspecial : special T s = match index_of s (lit_magic_string_ex_array T) with Some id => Some (MAGIC_EX id) | None => None end) by (unfold special; now rewrite Ei, En).
      destruct (index_of s (lit_magic_string_ex_array T)) as [id |] eqn:Ex.
      * pose proof (proj1 (index_of_some _ _ _ (ex_sorted T HT)) Ex) as Hat. apply at_index_bound in Hat. destruct (Z.ltb_spec 0 (zlength (lit_magic_string_ex_array T))); [| lia].
        apply runs_bind. eapply runs_reading; [exact Hex |]. destruct (Z.ltb_spec id (zlength (lit_magic_string_ex_array T))); [| lia]. apply runs_bind.
        pose proof HD as HD'. unfold tables_direct in HD'. unfold ecma_new_ecma_string_from_magic_string_ex_id.
        destruct (Z.leb_spec (id + LIT_MAGIC_STRING__COUNT T) ECMA_DIRECT_STRING_MAX_IMM); [| lia]. apply runs_ret, runs_ret, made_direct; [exact Hgood | | unfold ECMA_DIRECT_STRING_MAGIC; lia | lia].
        split; [exact Htext |]. split; [exact Hsize |]. rewrite Hspecial. unfold ecma_get_magic_string. now rewrite Z.add_comm.
      * assert (Hs : s <> []) by (rewrite Es; discriminate). destruct (Z.ltb_spec 0 (zlength (lit_magic_string_ex_array T))); [| apply runs_ret; now splits].
        apply runs_bind. eapply runs_reading; [exact Hex |]. rewrite Z.ltb_irrefl. apply runs_ret. now splits.
Qed.

(** ** Blocks *)

Lemma new_buffer_spec length size w (Q : Z -> world content -> Prop) : owns w -> 0 <= size ->
  (forall p w', is_block p -> blocks w !! p = None -> owns w' ->
    (let '(n, refs, d) := layout length size in blocks w' = <[p := (n, Some (BLOCK_STRING (mk_string refs 0 (d (repeat 0 (Z.to_nat size))))))]> (blocks w)) ->
    notes w' = notes w -> Q p w') ->
  runs (ecma_new_ecma_string_from_utf8_buffer length size) w Q.
Proof.
  intros Ho Hsize HQ. assert (Hroom : zlength (repeat 0 (Z.to_nat size)) = size) by (unfold zlength; rewrite repeat_length; lia).
  unfold ecma_new_ecma_string_from_utf8_buffer, ecma_alloc_string_buffer, write_string, layout in *. cbv zeta.
  destruct (size <=? 65535); [destruct ((length =? size) && (size <=? 256)) |].
  - apply (runs_new (size + ECMA_ASCII_STRING_HEADER_SIZE) (fun _ => BLOCK_STRING (mk_string 19 0 (ASCII (u8 (size - 1)) (repeat 0 (Z.to_nat size)))))); [exact Ho | unfold ECMA_ASCII_STRING_HEADER_SIZE, sizeof_ecma_string_t; lia | |].
    + intros _. cbn [content_size data data_size]. lia.
    + intros p w' Hb Hnew Ho' Hb' Hn'. apply runs_ret. now apply HQ.
  - apply (runs_new (size + sizeof_ecma_short_string_t) (fun _ => BLOCK_STRING (mk_string 16 0 (SHORT (u16 size) (u16 length) (repeat 0 (Z.to_nat size)))))); [exact Ho | unfold sizeof_ecma_short_string_t; lia | |].
    + intros _. cbn [content_size data data_size]. lia.
    + intros p w' Hb Hnew Ho' Hb' Hn'. apply runs_ret. now apply HQ.
  - apply (runs_new (size + sizeof_ecma_long_string_t) (fun _ => BLOCK_STRING (mk_string 17 0 (LONG size length (repeat 0 (Z.to_nat size)))))); [exact Ho | unfold sizeof_ecma_long_string_t; lia | |].
    + intros _. cbn [content_size data data_size]. lia.
    + intros p w' Hb Hnew Ho' Hb' Hn'. apply runs_ret. now apply HQ.
Qed.

Lemma fill_spec p hash chars w length (Q : unit -> world content -> Prop) :
  (let '(n, refs, d) := layout length (zlength chars) in
   owns w /\ blocks w !! p = Some (n, Some (BLOCK_STRING (mk_string refs 0 (d (repeat 0 (Z.to_nat (zlength chars)))))))
   /\ (forall w', owns w' -> blocks w' = <[p := (n, Some (BLOCK_STRING (mk_string refs hash (d chars))))]> (blocks w) -> notes w' = notes w -> Q tt w')) ->
  runs (fill_string p hash chars) w Q.
Proof.
  assert (Hroom : zlength (repeat 0 (Z.to_nat (zlength chars))) = zlength chars) by (unfold zlength; rewrite repeat_length; lia).
  assert (Hd : forall n refs d, layout length (zlength chars) = (n, refs, d) -> (forall l, zlength l = zlength chars -> content_size (BLOCK_STRING (mk_string refs hash (d l))) <= n)
    /\ with_chars (mk_string refs 0 (d (repeat 0 (Z.to_nat (zlength chars))))) hash chars = Some (mk_string refs hash (d chars))).
  { intros n refs d. unfold layout. destruct (_ <=? 65535); [destruct (_ && _) |]; intros E; injection E as <- <- <-; (split;
      [intros l Hl; cbn [content_size data data_size]; rewrite Hl; unfold ECMA_ASCII_STRING_HEADER_SIZE, sizeof_ecma_string_t, sizeof_ecma_short_string_t, sizeof_ecma_long_string_t; lia
      | unfold with_chars; cbn [data]; now rewrite Hroom, Z.eqb_refl]). }
  destruct (layout length (zlength chars)) as [[n refs] d]. destruct (Hd n refs d eq_refl) as [Hfit Hwith]. intros (Ho & Hp & HQ).
  unfold fill_string. apply runs_bind. eapply runs_read_string; [exact Hp |]. rewrite Hwith. unfold write_string.
  eapply runs_write; [exact Ho | exact Hp | apply Z.leb_le; now apply Hfit |]. intros w' Ho'. subst w'. now apply HQ.
Qed.

(** The block is a string with the characters *)
Lemma layout_heap s length n refs d : is_text s -> s <> [] -> zlength s < B32 - 1 -> lit_utf8_string_length s = Some length -> layout length (zlength s) = (n, refs, d) ->
  let x := mk_string refs (lit_utf8_string_calc_hash s) (d s) in heap_string x s /\ block_good n (BLOCK_STRING x) 1 /\ value_in (BLOCK_STRING x) = None.
Proof.
  intros (units & Hu & E) Hne Hsize Hlen. pose proof (zlength_nonneg s) as Hnn. assert (Hpos : 1 <= zlength s) by (destruct s; [easy | unfold zlength; cbn; lia]).
  unfold layout. destruct (Z.leb_spec (zlength s) 65535) as [Hshort | Hlong].
  - destruct ((length =? zlength s) && (zlength s <=? 256)) eqn:Ea; intros H; injection H as <- <- <-.
    + apply andb_prop in Ea as [E1 E2]. apply Z.eqb_eq in E1. apply Z.leb_le in E2. assert (Hu8 : u8 (zlength s - 1) = zlength s - 1) by zmod.
      assert (Hascii : Forall is_ascii s) by (rewrite E in *; rewrite text_length in Hlen by exact Hu; destruct (encode_same_length units Hu) as [-> Ha]; [congruence | exact Ha]).
      rewrite Hu8. split; [split; [reflexivity |]; split; [exact Hne |]; now splits |]. split; [| reflexivity]. split; [| right; splits; [reflexivity | reflexivity | lia]].
      split; [split; now vm_compute |]. split; [cbn [data data_size]; unfold ECMA_ASCII_STRING_HEADER_SIZE, sizeof_ecma_string_t; lia |]. cbn [data]. split; [reflexivity |]. unfold ECMA_ASCII_STRING_GET_SIZE. lia.
    + assert (Hl : 0 <= length <= zlength s).
      { rewrite E in *. rewrite text_length in Hlen by exact Hu. assert (length = zlength units) as -> by congruence. pose proof (encode_size_ge units). pose proof (zlength_nonneg units). lia. }
      assert (H16 : u16 (zlength s) = zlength s) by zmod. assert (H16' : u16 length = length) by zmod. rewrite H16, H16'.
      split; [split; [reflexivity |]; split; [exact Hne |]; now splits |]. split; [| reflexivity]. split; [| right; splits; [reflexivity | reflexivity | lia]].
      split; [split; now vm_compute |]. split; [cbn [data data_size]; unfold sizeof_ecma_short_string_t; lia |]. now split.
  - intros H; injection H as <- <- <-. split; [split; [reflexivity |]; split; [exact Hne |]; now splits |]. split; [| reflexivity]. split; [| right; splits; [reflexivity | reflexivity | lia]].
    split; [split; now vm_compute |]. split; [cbn [data data_size]; unfold sizeof_ecma_long_string_t; lia |]. now split.
Qed.

(** A block that is filled is the string, when the string has no special representation *)
Lemma made_block held m w' p s length n refs d : counted held m -> is_block p -> m !! p = None -> owns w' -> is_text s -> s <> [] -> zlength s < B32 - 1 ->
  lit_utf8_string_length s = Some length -> layout length (zlength s) = (n, refs, d) -> special T s = None ->
  blocks w' = <[p := (n, Some (BLOCK_STRING (mk_string refs (lit_utf8_string_calc_hash s) (d s))))]> m -> made held m s p w'.
Proof.
  intros Hc Hb Hnew Ho' Htext Hne Hsize Hlen Hlay Hspecial Hb'. destruct (layout_heap s length n refs d Htext Hne Hsize Hlen Hlay) as (Hheap & Hblock & Hval).
  split; [| eapply good_new; eassumption]. split; [exact Htext |]. split; [exact Hsize |]. rewrite Hspecial. split; [exact Hb |]. eexists. rewrite Hb', string_at_insert. now split.
Qed.

(** The common end of the functions that create a block *)
Lemma buffer_fill_spec held w s length : good held w -> is_text s -> s <> [] -> zlength s < B32 - 1 -> lit_utf8_string_length s = Some length -> special T s = None ->
  runs (string_desc_p ← ecma_new_ecma_string_from_utf8_buffer length (zlength s); _ ← fill_string string_desc_p (lit_utf8_string_calc_hash s) s; mret string_desc_p) w (made held (blocks w) s).
Proof.
  intros Hgood Htext Hne Hsize Hlen Hspecial. pose proof (proj1 Hgood) as Ho. apply runs_bind. eapply new_buffer_spec; [exact Ho | apply zlength_nonneg |].
  intros p w1 Hb Hnew Ho1 Hlay _. destruct (layout length (zlength s)) as [[n refs] d] eqn:E. apply runs_bind. eapply (fill_spec p _ s w1 length). rewrite E.
  splits; [exact Ho1 | rewrite Hlay; apply lookup_insert_eq |]. intros w2 Ho2 Hb2 _. apply runs_ret. eapply made_block; try eassumption; [exact (proj2 Hgood) |]. now rewrite Hb2, Hlay, insert_insert_eq.
Qed.

Lemma new_utf8_spec held w s : good held w -> is_text s -> zlength s < B32 - 1 -> runs (ecma_new_ecma_string_from_utf8 T s) w (made held (blocks w) s).
Proof.
  intros Hgood Htext Hsize. unfold ecma_new_ecma_string_from_utf8. apply runs_bind. eapply runs_mono; [now apply (find_special_spec held) |].
  intros [p |] w'; [intros Hm; now apply runs_ret |]. intros (Hspecial & Hne & ->). destruct Htext as (units & Hu & E). apply runs_bind.
  eapply runs_reading; [rewrite E; now apply text_length |]. apply buffer_fill_spec; try assumption; [now exists units | rewrite E; now apply text_length].
Qed.

Lemma new_ascii_spec held w s : good held w -> Forall is_ascii s -> zlength s < B32 - 1 -> runs (ecma_new_ecma_string_from_ascii T s) w (made held (blocks w) s).
Proof.
  intros Hgood Hascii Hsize. pose proof (text_ascii s Hascii) as Htext. unfold ecma_new_ecma_string_from_ascii. apply runs_bind. eapply runs_mono; [now apply (find_special_spec held) |].
  intros [p |] w'; [intros Hm; now apply runs_ret |]. intros (Hspecial & Hne & ->). apply buffer_fill_spec; try assumption. now apply ascii_length.
Qed.

Lemma good_note held w e : good held w -> good held (mk_world (heap_of w) (blocks w) (notes w ++ [e])).
Proof. intros [H1 H2]. now split. Qed.

(** The calls of the embedder's callback *)
Definition released_note (string : list Z) (user : Z) (w w' : world content) : Prop := notes w' = notes w ++ (if callback then [(string, user)] else []).

Lemma runs_callback string user (w : world content) (Q : unit -> world content -> Prop) :
  (forall w', heap_of w' = heap_of w -> blocks w' = blocks w -> released_note string user w w' -> Q tt w') ->
  runs (if callback then note (string, user) else mret tt) w Q.
Proof.
  unfold released_note. intros H. destruct callback; [apply (H (mk_world (heap_of w) (blocks w) (notes w ++ [(string, user)]))); reflexivity |].
  apply runs_ret. apply H; try reflexivity. now rewrite app_nil_r.
Qed.
End Theory.
