(* ===== verification/StringJoin.v ===== *)
(** * Joining strings

    ecma_append_chars_to_string and ecma_concat_ecma_strings of Strings take the
    reference to their first string over.  Their result is the string with the
    characters of both, in its one representation: joined magic strings and
    joined digits become direct strings again. *)
From Stdlib Require Import ZArith Lia Bool List.
From stdpp Require Import base gmap list.
From S2P Require Import Prelude LitChars LitStrings JmemHeap JmemPointers Values BlockHeap MagicStrings MagicTable StringData Decimal.
From S2P Require Import StringRepr StringAccess Ownership Counting Release Strings StringTheory.
Import ListNotations.
#[local] Open Scope Z_scope.

(** ** Numbers and sums *)

Lemma lor_at_most a b : 0 <= a -> 0 <= b -> Z.max a b <= Z.lor a b <= a + b.
Proof.
  intros Ha Hb. pose proof (Z.add_lor_land a b) as E. assert (0 <= Z.land a b) by (apply Z.land_nonneg; lia).
  assert (Hle : forall x y, 0 <= x -> 0 <= y -> Z.land x y <= x).
  { intros x y Hx Hy. pose proof (Z.add_lor_land (Z.land x y) (Z.ldiff x y)) as E2. assert (Z.land (Z.land x y) (Z.ldiff x y) = 0) as E3.
    { apply Z.bits_inj'. intros i _. rewrite !Z.land_spec, Z.ldiff_spec, Z.bits_0. now destruct (Z.testbit x i), (Z.testbit y i). }
    assert (Z.lor (Z.land x y) (Z.ldiff x y) = x) as E4.
    { apply Z.bits_inj'. intros i _. rewrite Z.lor_spec, Z.land_spec, Z.ldiff_spec. now destruct (Z.testbit x i), (Z.testbit y i). }
    assert (0 <= Z.ldiff x y) by (apply Z.ldiff_nonneg; lia). lia. }
  pose proof (Hle a b Ha Hb). pose proof (Hle b a Hb Ha) as H3. rewrite Z.land_comm in H3. lia.
Qed.

(** The first digits of a number are a number *)
Lemma decimal_prefix s t n : is_u32 n -> s <> [] -> s ++ t = decimal n -> number_of s <> None.
Proof.
  intros Hn Hs E. destruct (decimal_spec n Hn) as ((Hd & Hv & Hhead) & Hlen & _). rewrite <- E in *. apply Forall_app in Hd as [Hd1 Hd2].
  assert (Hu : is_decimal s (digits_value s)).
  { split; [exact Hd1 |]. split; [reflexivity |]. destruct s as [| c s]; [easy |]. destruct Hhead as [Hz | (c' & rest & Ec & Hc)].
    - left. injection Hz as -> Hz. now apply app_eq_nil in Hz as [-> _].
    - right. injection Ec as -> _. now exists c', s. }
  assert (Hle : digits_value s <= n).
  { assert (Hvs : digits_value (s ++ t) = digits_value s * 10 ^ zlength t + digits_value t) by (unfold digits_value at 1; rewrite fold_left_app; apply digits_from).
    pose proof (digits_bound t Hd2). pose proof (digits_bound s Hd1). assert (1 <= 10 ^ zlength t) by (pose proof (Z.pow_pos_nonneg 10 (zlength t) ltac:(lia) (zlength_nonneg t)); lia). nia. }
  assert (H32 : is_u32 (digits_value s)) by (pose proof (digits_bound s Hd1); unfold is_u32 in *; lia).
  rewrite (proj2 (number_of_some s (digits_value s))); [discriminate |]. split; [exact H32 |]. apply (decimal_unique _ _ _ Hu). now apply decimal_spec.
Qed.

(** The code looks for a number only behind digits, and only in short strings *)
Lemma joined_number s t (digits : bool) : s <> [] -> (digits = false <-> number_of s = None) ->
  (if digits && (zlength (s ++ t) <=? ECMA_MAX_CHARS_IN_STRINGIFIED_UINT32) then ecma_string_to_array_index (s ++ t) else None) = number_of (s ++ t).
Proof.
  intros Hs Hdigits. destruct (number_of (s ++ t)) as [n |] eqn:En.
  - pose proof En as En'. apply number_of_some in En' as [Hn E]. pose proof (decimal_prefix s t n Hn Hs E) as Hp.
    destruct digits; [| now destruct Hp; apply Hdigits]. destruct (decimal_spec n Hn) as (_ & Hlen & _). rewrite E at 1. unfold ECMA_MAX_CHARS_IN_STRINGIFIED_UINT32.
    destruct (Z.leb_spec (zlength (decimal n)) 10); [| lia]. cbn [andb]. rewrite E. now apply array_index_decimal.
  - destruct (digits && _) eqn:Eb; [| reflexivity]. apply andb_prop in Eb as [-> _]. rewrite number_of_code in En. destruct s as [| c s]; [easy |]. cbn [app] in *.
    destruct (number_of (c :: s)) as [k |] eqn:Ek; [| now destruct Hdigits as [_ Hd]; specialize (Hd eq_refl)]. apply number_of_some in Ek as [Hk Ek].
    destruct (decimal_head k Hk) as (c' & rest & Ec & Hc). rewrite Ec in Ek. injection Ek as -> _. unfold is_digit in Hc. unfold LIT_CHAR_0, LIT_CHAR_9 in En.
    destruct (Z.leb_spec 48 c'), (Z.leb_spec c' 57); try lia. exact En.
Qed.

Lemma hash_app s t : lit_utf8_string_hash_combine (lit_utf8_string_calc_hash s) t = lit_utf8_string_calc_hash (s ++ t).
Proof. unfold lit_utf8_string_calc_hash, lit_utf8_string_hash_combine. now rewrite fold_left_app. Qed.

Section Join.
Context {BH : BlockHeap} (T : magic_tables) (callback : bool) (HT : tables_ok T) (HD : tables_direct T).

(** ** References to strings *)

Lemma good_ext held held' (w : world content) : (forall q, held q = held' q) -> good held w -> good held' w.
Proof. intros E [Ho Hc]. split; [exact Ho |]. now apply (counted_ext held). Qed.

Lemma string_block (m : memory) p s : string_is T m p s -> ECMA_IS_DIRECT_STRING p = false ->
  exists n x, m !! p = Some (n, Some (BLOCK_STRING x)) /\ string_at m p = Some x /\ forall v, data x <> EXTENDED v.
Proof.
  intros Hs Hp. destruct (string_direct T HT HD m p s Hs) as [[E _] | (_ & x & Hx & Hcase)]; [congruence |].
  assert (Hv : forall v, data x <> EXTENDED v).
  { intros v E. destruct Hcase as [(n & _ & _ & Hd & _) | [_ (_ & _ & Hd)]]; rewrite E in Hd; [discriminate | exact Hd]. }
  pose proof Hx as Hat. unfold string_at, block_at in Hat. destruct (m !! p) as [[n [[y | | | | |] |]] |]; try discriminate. assert (y = x) as -> by congruence.
  exists n, x. now splits.
Qed.

(** The text of a string is determined *)
Lemma string_text (m : memory) p s t : string_is T m p s -> string_is T m p t -> s = t.
Proof.
  intros Hs Ht. pose proof (compare_spec T HT HD m p p s t Hs Ht) as H. unfold ecma_compare_ecma_strings in H. rewrite Z.eqb_refl in H. injection H as H.
  symmetry in H. now apply bool_decide_eq_true in H.
Qed.

Lemma deref_string held w p s : good held w -> string_is T (blocks w) p s -> holds_string held p ->
  runs (ecma_deref_ecma_string callback p) w (fun _ w' => good (disown_string p held) w' /\ keeps (fun q => 0 < disown_string p held q) (blocks w) (blocks w')).
Proof.
  intros Hgood Hs Hheld. unfold ecma_deref_ecma_string, disown_string. destruct (ECMA_IS_DIRECT_STRING p) eqn:Hp; [apply runs_ret; split; [exact Hgood | apply keeps_refl] |].
  destruct (string_block _ p s Hs Hp) as (n & x & Hblock & _ & Hv). apply good_state in Hgood.
  eapply runs_mono; [eapply deref_string_spec; [exact Hgood | exact Hblock | now apply Hheld | intros v Ev; now destruct (Hv v)] |].
  intros u w' H. now apply released_good.
Qed.

(** There is room for one more reference *)
Definition string_room (held : Z -> Z) (m : memory) (p : Z) : Prop := ECMA_IS_DIRECT_STRING p = false -> held p + inner p m < 268435455.

Lemma ref_string held w p s : good held w -> string_is T (blocks w) p s -> string_room held (blocks w) p ->
  runs (ecma_ref_ecma_string p) w (fun _ w' => good (own_string p held) w' /\ keeps (fun _ => True) (blocks w) (blocks w')).
Proof.
  intros Hgood Hs Hroom. unfold ecma_ref_ecma_string, own_string. destruct (ECMA_IS_DIRECT_STRING p) eqn:Hp; [apply runs_ret; split; [exact Hgood | apply keeps_refl] |].
  destruct (string_block _ p s Hs Hp) as (n & x & Hblock & _ & _). apply good_state in Hgood.
  eapply runs_mono; [eapply ref_string_spec; [exact Hgood | exact Hblock | now apply Hroom] |].
  intros u w' (m' & Hst & Hk & _). pose proof Hst as (Ho & Hb & _ & Hc). rewrite (left_id_L ∅ (∪)) in Hb. subst m'. split; [now split | exact Hk].
Qed.

(** ** New strings after and before a release *)

Lemma made_after h (m m1 : memory) s p w : keeps (fun q => 0 < h q) m m1 -> made T h m1 s p w -> made T h m s p w.
Proof. intros Hk (H1 & H2 & H3). split; [exact H1 |]. split; [exact H2 |]. eapply kept_trans; eassumption. Qed.

Lemma disown_le p held q : disown_string p held q <= held q.
Proof. unfold disown_string, drop. destruct (ECMA_IS_DIRECT_STRING p); [lia |]. case_bool_decide; lia. Qed.

Lemma own_ge p held q : held q <= own_string p held q.
Proof. unfold own_string, take. destruct (ECMA_IS_DIRECT_STRING p); [lia |]. case_bool_decide; lia. Qed.

Lemma own_disown p q held r : own_string p (disown_string q held) r = disown_string q (own_string p held) r.
Proof. unfold own_string, disown_string, take, drop. destruct (ECMA_IS_DIRECT_STRING p), (ECMA_IS_DIRECT_STRING q); lia. Qed.

Lemma disown_own p held r : own_string p (disown_string p held) r = held r.
Proof. unfold own_string, disown_string, take, drop. destruct (ECMA_IS_DIRECT_STRING p); lia. Qed.

(** The release of another string leaves the new one *)
Lemma made_release held (m : memory) w s p q t : (forall r, 0 <= held r) -> made T held m s p w -> string_is T m q t -> holds_string held q -> q <> p ->
  runs (ecma_deref_ecma_string callback q) w (fun _ w' => made T (disown_string q held) m s p w').
Proof.
  intros H0 (Hs & Hgood & Hk) Hq Hheld Hne. assert (Hq' : string_is T (blocks w) q t) by (eapply keeps_string; [exact Hk | exact Hheld | exact Hq]).
  eapply runs_mono; [apply (deref_string (own_string p held) w q t Hgood Hq') |].
  - intros Hd. pose proof (own_ge p held q). specialize (Hheld Hd). lia.
  - intros u w' [Hgood' Hk']. split; [| split].
    + eapply keeps_string; [exact Hk' | | exact Hs]. cbv beta. intros Hd. rewrite <- own_disown. unfold own_string. rewrite Hd. unfold take, disown_string, drop.
      rewrite (bool_decide_eq_true_2 (p = p)) by reflexivity. specialize (H0 p). destruct (ECMA_IS_DIRECT_STRING q); [lia |]. rewrite (bool_decide_eq_false_2 (p = q)) by congruence. lia.
    + eapply good_ext; [| exact Hgood']. intros r. symmetry. apply own_disown.
    + eapply kept_trans; [eapply keeps_mono; [| exact Hk] | eapply keeps_mono; [| exact Hk']]; cbv beta; intros r Hr.
      * pose proof (disown_le q held r). lia.
      * rewrite <- own_disown. pose proof (own_ge p (disown_string q held) r). lia.
Qed.

(** A direct string that replaces a string *)
Lemma direct_after_release held w s p q t : good held w -> string_is T (blocks w) q t -> holds_string held q ->
  (forall m, string_is T m p s) -> ECMA_IS_DIRECT_STRING p = true ->
  runs (_ ← ecma_deref_ecma_string callback q; mret p) w (made T (disown_string q held) (blocks w) s).
Proof.
  intros Hgood Hq Hheld Hs Hp. apply runs_bind. eapply runs_mono; [now apply (deref_string held w q t) |]. intros u w' [Hgood' Hk]. apply runs_ret.
  split; [apply Hs |]. split; [| exact Hk]. unfold own_string. now rewrite Hp.
Qed.

(** ** Appending *)

Lemma empty_string (m : memory) p s : string_is T m p s -> (ecma_string_is_empty p = true <-> s = []).
Proof.
  intros Hs. assert (Hempty : string_is T m (ecma_get_magic_string LIT_MAGIC_STRING__EMPTY) []).
  { split; [exists []; split; [constructor | reflexivity] |]. split; [now vm_compute |]. unfold special.
    now rewrite (proj2 (index_of_some _ _ _ (magic_sorted T HT)) (magic_empty T HT)). }
  unfold ecma_string_is_empty, ecma_compare_ecma_string_to_magic_id. rewrite Z.eqb_eq. split.
  - intros ->. eapply string_text; eassumption.
  - intros ->. destruct Hs as (_ & _ & H). destruct Hempty as (_ & _ & H'). unfold special in H. unfold special in H'.
    rewrite (proj2 (index_of_some _ _ _ (magic_sorted T HT)) (magic_empty T HT)) in H, H'. congruence.
Qed.

(** The characters of both strings *)
Record join (p : Z) (s1 s2 : list Z) (held : Z -> Z) (w : world content) : Prop := {
  join_good : good held w;
  join_first : string_is T (blocks w) p s1;
  join_held : holds_string held p;
  join_text : is_text s2;
  join_nonempty : s1 <> [];
  join_size : zlength s1 + zlength s2 < B32 - 1
}.

(** The block with the characters of both *)
Lemma append_block p s1 s2 length1 length2 (rehash : bool) held w : join p s1 s2 held w ->
  lit_utf8_string_length s1 = Some length1 -> lit_utf8_string_length s2 = Some length2 -> special T (s1 ++ s2) = None ->
  (rehash = false -> is_block p /\ ecma_string_hash (blocks w) p = Some (lit_utf8_string_calc_hash s1)) ->
  runs (string_desc_p ← ecma_new_ecma_string_from_utf8_buffer (u32 (length1 + length2)) (zlength (s1 ++ s2));
        hash_start ← (if rehash then mret (lit_utf8_string_calc_hash s1) else x ← read_string p; mret (u x));
        _ ← fill_string string_desc_p (lit_utf8_string_hash_combine hash_start s2) (s1 ++ s2);
        _ ← ecma_deref_ecma_string callback p;
        mret string_desc_p) w (made T (disown_string p held) (blocks w) (s1 ++ s2)).
Proof.
  intros [Hgood Hs1 Hheld Ht2 Hne Hsize] Hl1 Hl2 Hspecial Hhash. pose proof (proj1 Hgood) as Ho. pose proof (proj1 Hs1) as Ht1.
  assert (Hlen : lit_utf8_string_length (s1 ++ s2) = Some (u32 (length1 + length2))).
  { destruct Ht1 as (u1 & Hu1 & ->), Ht2 as (u2 & Hu2 & ->). rewrite text_length in Hl1, Hl2 by assumption. injection Hl1 as <-. injection Hl2 as <-.
    rewrite <- cesu8_encode_app, text_length, zlength_app by now apply Forall_app. f_equal. symmetry. apply u32_small.
    pose proof (encode_size_ge u1). pose proof (encode_size_ge u2). pose proof (zlength_nonneg u1). pose proof (zlength_nonneg u2). unfold is_u32. lia. }
  apply runs_bind. eapply new_buffer_spec; [exact Ho | apply zlength_nonneg |]. intros q w1 Hq Hnew Ho1 Hlay _.
  destruct (layout (u32 (length1 + length2)) (zlength (s1 ++ s2))) as [[n refs] d] eqn:E.
  apply runs_bind, (runs_mono _ _ (fun h w' => h = lit_utf8_string_calc_hash s1 /\ w' = w1)).
  { destruct rehash; [apply runs_ret; now split |]. destruct (Hhash eq_refl) as [Hb Hx]. apply runs_bind.
    destruct (string_block _ p s1 Hs1 (block_not_direct p Hb)) as (k & x & Hp & Hat & _). unfold ecma_string_hash in Hx. rewrite block_not_direct, Hat in Hx by exact Hb. injection Hx as Hx.
    eapply runs_read_string; [rewrite Hlay, lookup_insert_ne; [exact Hp |] | apply runs_ret; now split]. intros ->. congruence. }
  intros h w' [-> ->]. cbv beta. rewrite hash_app. apply runs_bind. eapply (fill_spec q _ _ w1 (u32 (length1 + length2))). rewrite E.
  split; [exact Ho1 |]. split; [rewrite Hlay; apply lookup_insert_eq |]. intros w2 Ho2 Hb2 _. apply runs_bind.
  eapply runs_mono; [apply (made_release held (blocks w) w2 (s1 ++ s2) q p s1) |].
  - apply (counted_held _ _ (proj2 Hgood)).
  - eapply (made_block T); try eassumption; [exact (proj2 Hgood) | now apply text_app | now destruct s1 | rewrite zlength_app; lia | now rewrite Hb2, Hlay, insert_insert_eq].
  - exact Hs1.
  - exact Hheld.
  - intros ->. destruct (string_block _ q s1 Hs1 (block_not_direct q Hq)) as (k & x & Hp & _). congruence.
  - intros u w3 Hm. apply runs_ret. exact Hm.
Qed.

(** Direct strings *)
Lemma magic_string_is (m : memory) s id : is_text s -> zlength s < B32 - 1 -> index_of s (lit_magic_strings T) = Some id ->
  string_is T m (ecma_get_magic_string id) s /\ ECMA_IS_DIRECT_STRING (ecma_get_magic_string id) = true /\ id <> LIT_MAGIC_STRING__COUNT T.
Proof.
  intros Ht Hs Ei. pose proof (magic_count T HT) as Hcount. pose proof (proj1 (index_of_some _ _ _ (magic_sorted T HT)) Ei) as Hat. apply at_index_bound in Hat.
  splits; [split; [exact Ht |]; split; [exact Hs |]; unfold special; now rewrite Ei | | lia].
  apply direct_fields; [unfold ECMA_DIRECT_STRING_MAGIC; lia | apply (ids_direct T HT); lia].
Qed.

Lemma ex_string_is (m : memory) s id : is_text s -> zlength s < B32 - 1 -> special T s = Some (MAGIC_EX id) ->
  let p := ecma_get_magic_string (id + LIT_MAGIC_STRING__COUNT T) in string_is T m p s /\ ECMA_IS_DIRECT_STRING p = true /\ ecma_new_ecma_string_from_magic_string_ex_id T id = mret p.
Proof.
  intros Ht Hs E. pose proof (special_ranges T HT _ _ E) as Hr. cbn in Hr. pose proof HD as HD'. unfold tables_direct in HD'. pose proof (magic_count T HT) as Hcount. pose proof (zlength_nonneg (lit_magic_strings T)).
  cbv zeta. splits.
  - split; [exact Ht |]. split; [exact Hs |]. rewrite E. now rewrite Z.add_comm.
  - apply direct_fields; [unfold ECMA_DIRECT_STRING_MAGIC; lia | lia].
  - unfold ecma_new_ecma_string_from_magic_string_ex_id. destruct (Z.leb_spec (id + LIT_MAGIC_STRING__COUNT T) ECMA_DIRECT_STRING_MAX_IMM); [reflexivity | lia].
Qed.

Lemma ex_search s (search : list Z -> option Z) w (Q : Z -> world content -> Prop) : zlength s < B32 -> search s = lit_is_ex_utf8_string_magic T s ->
  Q (match index_of s (lit_magic_string_ex_array T) with Some id => id | None => lit_get_magic_string_ex_count T end) w ->
  runs (if 0 <? lit_get_magic_string_ex_count T then reading (fun _ => search s) else mret (lit_get_magic_string_ex_count T)) w Q.
Proof.
  intros Hs E HQ. destruct (Z.ltb_spec 0 (lit_get_magic_string_ex_count T)) as [Hlt | Hge].
  - eapply runs_reading; [| exact HQ]. rewrite E. now apply is_ex_magic_spec.
  - apply runs_ret. unfold lit_get_magic_string_ex_count in *. destruct (lit_magic_string_ex_array T) as [| c rest]; [exact HQ |].
    rewrite zlength_cons in Hge. pose proof (zlength_nonneg rest). lia.
Qed.

Lemma append_spec p s1 s2 length2 held w : join p s1 s2 held w -> lit_utf8_string_length s2 = Some length2 ->
  runs (ecma_append_chars_to_string T callback p s2 length2) w (made T (disown_string p held) (blocks w) (s1 ++ s2)).
Proof.
  intros Hjoin Hl2. pose proof Hjoin as [Hgood Hs1 Hheld Ht2 Hne Hsize]. pose proof (proj1 Hs1) as Ht1. destruct Ht1 as (u1 & Hu1 & E1).
  pose proof (zlength_nonneg s1) as N1. pose proof (zlength_nonneg s2) as N2.
  assert (Htext : is_text (s1 ++ s2)) by (apply text_app; [now exists u1 | exact Ht2]). assert (Hsum : zlength (s1 ++ s2) = zlength s1 + zlength s2) by apply zlength_app.
  unfold ecma_append_chars_to_string. destruct (ecma_string_is_empty p) eqn:Ep; [now apply (empty_string (blocks w) p s1 Hs1) in Ep |].
  rewrite E1 in Hs1. destruct (get_chars_spec T HT HD (blocks w) p u1 Hu1 Hs1 ECMA_STRING_FLAG_IS_ASCII (or_intror eq_refl)) as (l1 & flags & Hchars & Hl1 & Hnum & Hhash).
  rewrite <- E1 in *. specialize (Hl1 eq_refl). subst l1. apply runs_bind. eapply runs_reading; [exact Hchars |]. cbv iota zeta beta. rewrite u32_small by (unfold is_u32; lia).
  pose proof (lor_at_most _ _ N1 N2). destruct (Z.ltb_spec (zlength s1 + zlength s2) (Z.lor (zlength s1) (zlength s2))); [lia |].
  apply runs_bind. eapply runs_reading; [rewrite is_pair_magic_spec, is_magic_spec by (assumption || lia); reflexivity |].
  destruct (index_of (s1 ++ s2) (lit_magic_strings T)) as [id |] eqn:Ei.
  { destruct (magic_string_is (blocks w) _ id Htext ltac:(lia) Ei) as (_ & Hd & Hid). destruct (Z.eqb_spec id (LIT_MAGIC_STRING__COUNT T)); [easy |]. cbn [negb].
    eapply direct_after_release; try eassumption. intros m. apply magic_string_is; (assumption || lia). }
  rewrite Z.eqb_refl. cbn [negb]. rewrite <- Hsum. rewrite (joined_number s1 s2 (negb (Z.land flags ECMA_STRING_FLAG_IS_UINT32 =? 0)) Hne).
  2:{ rewrite <- Hnum, negb_false_iff. apply Z.eqb_eq. }
  destruct (number_of (s1 ++ s2)) as [n |] eqn:En.
  { apply number_of_some in En as [Hn E]. apply runs_bind. eapply runs_mono; [now apply (deref_string held w p s1) |]. intros u w' [Hgood' Hk].
    eapply runs_mono; [now apply (new_uint32_spec T HT (disown_string p held)) |]. intros r w'' Hm. rewrite E. eapply made_after; eassumption. }
  apply runs_bind. apply (ex_search (s1 ++ s2) (fun _ => lit_is_ex_utf8_string_pair_magic T s1 s2)); [lia | now apply is_ex_pair_magic_spec; [exact HT | lia] |]. cbv beta.
  assert (Hspecial : special T (s1 ++ s2) = match index_of (s1 ++ s2) (lit_magic_string_ex_array T) with Some id => Some (MAGIC_EX id) | None => None end) by (unfold special; now rewrite Ei, En).
  destruct (index_of (s1 ++ s2) (lit_magic_string_ex_array T)) as [id |] eqn:Ex.
  { pose proof (special_ranges T HT _ _ Hspecial) as Hr. cbn in Hr. unfold lit_get_magic_string_ex_count. destruct (Z.ltb_spec id (zlength (lit_magic_string_ex_array T))); [| lia].
    destruct (ex_string_is (blocks w) _ id Htext ltac:(lia) Hspecial) as (_ & Hd & ->). eapply direct_after_release; try eassumption.
    intros m. apply ex_string_is; (assumption || lia). }
  rewrite Z.ltb_irrefl. apply append_block; try assumption.
  - rewrite E1. now apply text_length.
  - intros Hr. destruct Hhash as [Hh Hb]; [now apply Z.eqb_eq, negb_false_iff | now split].
Qed.

(** ** Concatenation *)

Lemma concat_spec p q s1 s2 held w : good held w -> string_is T (blocks w) p s1 -> string_is T (blocks w) q s2 -> holds_string held p -> string_room held (blocks w) q ->
  zlength s1 + zlength s2 < B32 - 1 -> runs (ecma_concat_ecma_strings T callback p q) w (made T (disown_string p held) (blocks w) (s1 ++ s2)).
Proof.
  intros Hgood Hs1 Hs2 Hheld Hroom Hsize. unfold ecma_concat_ecma_strings.
  destruct (ecma_string_is_empty p) eqn:Ep.
  { pose proof Ep as Ep'. unfold ecma_string_is_empty, ecma_compare_ecma_string_to_magic_id in Ep'. apply Z.eqb_eq in Ep'. apply (empty_string (blocks w) p s1 Hs1) in Ep as ->.
    assert (Hdirect : disown_string p held = held).
    { unfold disown_string. assert (ECMA_IS_DIRECT_STRING p = true) as ->; [| reflexivity]. rewrite Ep'. now vm_compute. }
    rewrite Hdirect. cbn [app]. apply runs_bind. eapply runs_mono; [now apply (ref_string held w q s2) |]. intros u w' [Hgood' Hk]. apply runs_ret.
    split; [eapply keeps_string; [exact Hk | easy | exact Hs2] |]. split; [exact Hgood' |]. eapply keeps_mono; [| exact Hk]. easy. }
  destruct (ecma_string_is_empty q) eqn:Eq.
  { apply (empty_string (blocks w) q s2 Hs2) in Eq as ->. rewrite app_nil_r. apply runs_ret. split; [exact Hs1 |]. split; [| apply keeps_refl].
    eapply good_ext; [| exact Hgood]. intros r. symmetry. apply disown_own. }
  destruct (proj1 Hs2) as (u2 & Hu2 & E2). rewrite E2 in Hs2. destruct (get_chars_spec T HT HD (blocks w) q u2 Hu2 Hs2 ECMA_STRING_FLAG_IS_ASCII (or_intror eq_refl)) as (l2 & flags & Hchars & Hl2 & _ & _).
  specialize (Hl2 eq_refl). subst l2. apply runs_bind. eapply runs_reading; [exact Hchars |]. rewrite <- E2 in *. apply append_spec; [| rewrite E2; now apply text_length].
  split; try assumption; [now exists u2 |]. intros ->. rewrite (proj2 (empty_string (blocks w) p [] Hs1) eq_refl) in Ep. discriminate.
Qed.

(** Too many characters end the process *)
Lemma concat_overflow p q s1 s2 w : string_is T (blocks w) p s1 -> string_is T (blocks w) q s2 -> B32 <= zlength s1 + zlength s2 ->
  ecma_concat_ecma_strings T callback p q w = STOP false.
Proof.
  intros Hs1 Hs2 Hsize. pose proof (proj1 (proj2 Hs1)) as B1. pose proof (proj1 (proj2 Hs2)) as B2. unfold ecma_concat_ecma_strings, ecma_append_chars_to_string.
  assert (Hne : forall r s, string_is T (blocks w) r s -> 1 < zlength s -> ecma_string_is_empty r = false).
  { intros r s Hs Hl. destruct (ecma_string_is_empty r) eqn:E; [| reflexivity]. apply (empty_string (blocks w) r s Hs) in E as ->. rewrite (@zlength_nil Z) in Hl. lia. }
  rewrite (Hne p s1 Hs1), (Hne q s2 Hs2) by lia. destruct (proj1 Hs1) as (u1 & Hu1 & E1), (proj1 Hs2) as (u2 & Hu2 & E2). rewrite E1 in Hs1. rewrite E2 in Hs2.
  destruct (get_chars_spec T HT HD (blocks w) q u2 Hu2 Hs2 ECMA_STRING_FLAG_IS_ASCII (or_intror eq_refl)) as (l2 & f2 & C2 & _).
  destruct (get_chars_spec T HT HD (blocks w) p u1 Hu1 Hs1 ECMA_STRING_FLAG_IS_ASCII (or_intror eq_refl)) as (l1 & f1 & C1 & _).
  rewrite <- E1, <- E2 in *. unfold mbind, W_bind, reading. rewrite C2. cbv beta iota. rewrite C1. cbv beta iota zeta.
  pose proof (zlength_nonneg s1). pose proof (zlength_nonneg s2). pose proof (lor_at_most (zlength s1) (zlength s2) ltac:(lia) ltac:(lia)).
  assert (Hu : u32 (zlength s1 + zlength s2) = zlength s1 + zlength s2 - B32) by zmod. rewrite Hu. destruct (Z.ltb_spec (zlength s1 + zlength s2 - B32) (Z.lor (zlength s1) (zlength s2))); [reflexivity | lia].
Qed.
End Join.

(** ** Properties *)

(** C25: concatenation: ecma_concat_ecma_strings returns the string with the
    characters of both strings, in the one representation such a string has; it
    takes the reference to the first string over, the result is one reference
    more, every counter stays exact, and no string that is still held changes.
    When the sizes do not fit into 32 bits, the process ends. *)
Theorem ecma_concat_ecma_strings_correct {BH : BlockHeap} T callback held (w : world content) p q s1 s2 : tables_ok T -> tables_direct T -> good held w ->
  string_is T (blocks w) p s1 -> string_is T (blocks w) q s2 -> holds_string held p -> string_room held (blocks w) q ->
  (zlength s1 + zlength s2 < B32 - 1 ->
    runs (ecma_concat_ecma_strings T callback p q) w (fun r w' => string_is T (blocks w') r (s1 ++ s2) /\ good (own_string r (disown_string p held)) w'
      /\ keeps (fun x => 0 < disown_string p held x) (blocks w) (blocks w')))
  /\ (B32 <= zlength s1 + zlength s2 -> ecma_concat_ecma_strings T callback p q w = STOP false).
Proof.
  intros HT HD Hgood Hs1 Hs2 Hheld Hroom. split; intros Hsize.
  - eapply runs_mono; [now apply (concat_spec T callback HT HD p q s1 s2 held) |]. intros r w' H. exact H.
  - now apply (concat_overflow T callback HT HD p q s1 s2).
Qed.

Lemma example_text : string_is default_tables (blocks string_world) 0 [97; 98].
Proof.
  assert (Ha : Forall is_ascii [97; 98]) by (repeat constructor; unfold is_ascii; lia). split; [now apply text_ascii |]. split; [now vm_compute |].
  assert (special default_tables [97; 98] = None) as -> by now vm_compute. split; [split; [lia | now exists 0] |].
  exists example_string. split; [reflexivity |]. split; [now vm_compute |]. split; [discriminate |]. now splits.
Qed.

(** "ab" and "7" *)
Lemma ecma_concat_ecma_strings_witness : runs (ecma_concat_ecma_strings default_tables true 0 (ecma_get_ecma_string_from_uint32 7)) string_world
  (fun r w' => string_is default_tables (blocks w') r [97; 98; 55] /\ good (own_string r (disown_string 0 (take 0 (fun _ => 0)))) w'
      /\ keeps (fun x => 0 < disown_string 0 (take 0 (fun _ => 0)) x) (blocks string_world) (blocks w'))
  /\ (match ecma_concat_ecma_strings default_tables true 0 (ecma_get_ecma_string_from_uint32 7) string_world with OK _ _ => true | _ => false end) = true.
Proof.
  split; [| now vm_compute]. apply (proj1 (ecma_concat_ecma_strings_correct default_tables true (take 0 (fun _ => 0)) string_world 0 (ecma_get_ecma_string_from_uint32 7) [97; 98] [55]
    default_tables_ok default_direct string_world_good example_text (example_seven _) ltac:(intros _; now vm_compute) ltac:(intros H; discriminate H))).
  now vm_compute.
Defined.
