(* ===== verification/StringCut.v ===== *)
(** * Cutting strings, and strings from code units

    ecma_string_substr and ecma_string_trim of Strings make new strings from
    characters of a string; the other functions here make strings from single
    code units, from UTF-8 and from buffers of the embedder. *)
From Stdlib Require Import ZArith Lia Bool List.
From stdpp Require Import base gmap list.
From S2P Require Import Prelude LitChars LitStrings JmemHeap JmemPointers Values BlockHeap MagicStrings MagicTable StringData Decimal.
From S2P Require Import StringRepr StringAccess Ownership Counting Release Strings StringTheory StringJoin.
Import ListNotations.
#[local] Open Scope Z_scope.

(** ** Characters *)

Lemma skip_units a b : Forall is_u16 a -> forall passed, skip_characters (length a) (cesu8_encode (a ++ b)) passed = Some (rev passed ++ cesu8_encode a, cesu8_encode b).
Proof.
  induction 1 as [| u a Hu Ha IH]; intros passed; [cbn; now rewrite app_nil_r |]. cbn [length skip_characters app]. rewrite cesu8_encode_cons.
  destruct (encode_cons_view u (a ++ b)) as (c & rest & E). rewrite E. rewrite (char_size u _ c rest Hu E), <- E. cbv zeta.
  rewrite first_app. change (skipn (Z.to_nat (zlength (lit_code_unit_to_utf8 u)))) with (advance (zlength (lit_code_unit_to_utf8 u))). rewrite advance_app, IH.
  rewrite rev_app_distr, rev_involutive, <- app_assoc. reflexivity.
Qed.

Lemma encode_size_le a b : zlength (cesu8_encode a) <= zlength (cesu8_encode (a ++ b)) /\ zlength (cesu8_encode b) <= zlength (cesu8_encode (a ++ b)).
Proof. rewrite cesu8_encode_app, zlength_app. pose proof (zlength_nonneg (cesu8_encode a)). pose proof (zlength_nonneg (cesu8_encode b)). lia. Qed.

Lemma encode_size_slice i n units : zlength (cesu8_encode (firstn n (skipn i units))) <= zlength (cesu8_encode units).
Proof.
  pose proof (proj2 (encode_size_le (firstn i units) (skipn i units))) as H1. rewrite firstn_skipn in H1.
  pose proof (proj1 (encode_size_le (firstn n (skipn i units)) (skipn n (skipn i units)))) as H2. rewrite firstn_skipn in H2. lia.
Qed.

Lemma white_space_suffix units : exists front, units = front ++ drop_white_space units.
Proof.
  induction units as [| u units [front IH]]; [now exists [] |]. cbn [drop_white_space]. destruct (lit_char_is_white_space u); [exists (u :: front); cbn [app]; now rewrite <- IH | now exists []].
Qed.

Lemma trim_slice units : exists front back, units = front ++ trim_units units ++ back.
Proof.
  destruct (white_space_suffix units) as [front E]. destruct (white_space_suffix (rev (drop_white_space units))) as [back E'].
  exists front, (rev back). unfold trim_units. rewrite <- rev_app_distr, <- E', rev_involutive. exact E.
Qed.

Section Cut.
Context {BH : BlockHeap} (T : magic_tables) (HT : tables_ok T) (HD : tables_direct T).

Lemma made_empty held (w : world content) : good held w -> made T held (blocks w) [] (ecma_get_magic_string LIT_MAGIC_STRING__EMPTY) w.
Proof.
  intros Hgood. assert (Hi : index_of [] (lit_magic_strings T) = Some LIT_MAGIC_STRING__EMPTY) by (apply (index_of_some _ _ _ (magic_sorted T HT)), (magic_empty T HT)).
  destruct (magic_string_is T HT (blocks w) [] _ ltac:(now exists []) ltac:(now vm_compute) Hi) as (Hs & Hd & _).
  split; [exact Hs |]. split; [| apply keeps_refl]. unfold own_string. now rewrite Hd.
Qed.

(** The code units from [start_pos] to [end_pos] *)
Definition slice (start_pos end_pos : Z) (units : list Z) : list Z := firstn (Z.to_nat (end_pos - start_pos)) (skipn (Z.to_nat start_pos) units).

Lemma substr_spec p units start_pos end_pos held w : good held w -> Forall is_u16 units -> string_is T (blocks w) p (cesu8_encode units) ->
  0 <= start_pos <= zlength units -> 0 <= end_pos <= zlength units ->
  runs (ecma_string_substr T p start_pos end_pos) w (made T held (blocks w) (cesu8_encode (slice start_pos end_pos units))).
Proof.
  intros Hgood Hu Hs Hstart Hend. pose proof (proj1 (proj2 Hs)) as Hsize. unfold ecma_string_substr. apply runs_bind. eapply runs_reading; [exact (length_spec T HT HD (blocks w) p units Hu Hs) |].
  unfold slice. destruct (Z.leb_spec end_pos start_pos) as [Hle | Hlt].
  { replace (Z.to_nat (end_pos - start_pos)) with 0%nat by lia. apply runs_ret. exact (made_empty held w Hgood). }
  cbv zeta. set (i := Z.to_nat start_pos). set (n := Z.to_nat (end_pos - start_pos)). pose proof (encode_size_slice i n units) as Hslice.
  assert (Htext : is_text (cesu8_encode (firstn n (skipn i units)))) by (exists (firstn n (skipn i units)); split; [now apply Forall_take, Forall_drop | reflexivity]).
  destruct (get_chars_spec T HT HD (blocks w) p units Hu Hs ECMA_STRING_FLAG_EMPTY (or_introl eq_refl)) as (l & fl & Hchars & _). apply runs_bind. eapply runs_reading; [exact Hchars |]. cbv beta iota.
  destruct (Z.eqb_spec (zlength units) (zlength (cesu8_encode units))) as [E | _].
  - destruct (encode_same_length units Hu ltac:(lia)) as [E' Ha]. rewrite E'.
    assert (Ha' : Forall is_ascii (firstn n (skipn i units))) by now apply Forall_take, Forall_drop.
    rewrite (proj2 (ascii_encode _ Ha')) in *. apply (new_utf8_spec T HT HD); [exact Hgood | exact Htext | lia].
  - assert (Hi : length (firstn i units) = i) by (apply firstn_length_le; unfold i, zlength in *; lia).
    assert (Hn : length (firstn n (skipn i units)) = n) by (apply firstn_length_le; rewrite length_skipn; unfold n, i, zlength in *; lia).
    apply runs_bind. eapply runs_reading.
    { rewrite <- (firstn_skipn i units) at 1. rewrite <- Hi at 1. apply skip_units. now apply Forall_take. }
    cbv beta iota. apply runs_bind. eapply runs_reading.
    { rewrite <- (firstn_skipn n (skipn i units)) at 1. rewrite <- Hn at 1. apply skip_units. now apply Forall_take, Forall_drop. }
    cbv beta iota. apply (new_utf8_spec T HT HD); [exact Hgood | exact Htext | cbn [rev app]; lia].
Qed.

Lemma trim_spec p units held w : good held w -> Forall is_u16 units -> string_is T (blocks w) p (cesu8_encode units) ->
  runs (ecma_string_trim T p) w (made T held (blocks w) (cesu8_encode (trim_units units))).
Proof.
  intros Hgood Hu Hs. pose proof (proj1 (proj2 Hs)) as Hsize. unfold ecma_string_trim. destruct (get_chars_spec T HT HD (blocks w) p units Hu Hs ECMA_STRING_FLAG_IS_ASCII (or_intror eq_refl)) as (l & fl & Hchars & _).
  apply runs_bind. eapply runs_reading; [exact Hchars |]. cbv beta iota. destruct (Z.ltb_spec 0 (zlength (cesu8_encode units))) as [_ | Hle].
  - apply runs_bind. eapply runs_reading; [now apply trim_encode |]. apply (new_utf8_spec T HT HD); [exact Hgood | |].
    + exists (trim_units units). split; [| reflexivity]. unfold trim_units. apply Forall_rev, drop_white_space_Forall, Forall_rev, drop_white_space_Forall, Hu.
    + destruct (trim_slice units) as (front & back & E). rewrite E in Hsize at 1. pose proof (proj2 (encode_size_le front (trim_units units ++ back))).
      pose proof (proj1 (encode_size_le (trim_units units) back)). lia.
  - destruct units as [| u units]; [apply runs_ret; exact (made_empty held w Hgood) |]. exfalso. pose proof (encode_size_ge (u :: units)). rewrite zlength_cons in *. pose proof (zlength_nonneg units). lia.
Qed.

(** ** Code units and UTF-8 *)

Lemma code_unit_spec u held w : good held w -> is_u16 u -> runs (ecma_new_ecma_string_from_code_unit T u) w (made T held (blocks w) (cesu8_encode [u])).
Proof.
  intros Hgood Hu. rewrite cesu8_encode_cons. change (cesu8_encode []) with (@nil Z). rewrite app_nil_r. apply (new_utf8_spec T HT HD); [exact Hgood | |].
  - exists [u]. split; [constructor; [exact Hu | constructor] |]. rewrite cesu8_encode_cons. change (cesu8_encode []) with (@nil Z). now rewrite app_nil_r.
  - pose proof (code_unit_length u). lia.
Qed.

Lemma code_units_spec u v held w : good held w -> is_u16 u -> is_u16 v -> runs (ecma_new_ecma_string_from_code_units T u v) w (made T held (blocks w) (cesu8_encode [u; v])).
Proof.
  intros Hgood Hu Hv. assert (E : lit_code_unit_to_utf8 u ++ lit_code_unit_to_utf8 v = cesu8_encode [u; v]).
  { rewrite !cesu8_encode_cons. change (cesu8_encode []) with (@nil Z). now rewrite app_nil_r. }
  unfold ecma_new_ecma_string_from_code_units. rewrite E. apply (new_utf8_spec T HT HD); [exact Hgood | exists [u; v]; split; [constructor; [exact Hu | constructor; [exact Hv | constructor]] | reflexivity] |].
  rewrite <- E, zlength_app. pose proof (code_unit_length u). pose proof (code_unit_length v). lia.
Qed.
End Cut.

(** ** Properties *)

(** Parts of strings: for positions in the string ecma_string_substr returns the
    string with exactly the code units from the start to the end position, on
    every representation, and ecma_string_trim the string without the white space
    at both ends; the argument keeps its reference, counters stay exact and no
    held string changes. *)
Theorem ecma_string_cut_correct {BH : BlockHeap} T held (w : world content) p units : tables_ok T -> tables_direct T -> good held w ->
  Forall is_u16 units -> string_is T (blocks w) p (cesu8_encode units) ->
  (forall start_pos end_pos, 0 <= start_pos <= zlength units -> 0 <= end_pos <= zlength units ->
    runs (ecma_string_substr T p start_pos end_pos) w
      (made T held (blocks w) (cesu8_encode (slice start_pos end_pos units))))
  /\ runs (ecma_string_trim T p) w (made T held (blocks w) (cesu8_encode (trim_units units))).
Proof.
  intros HT HD Hgood Hu Hs. split; [intros start_pos end_pos Hstart Hend; now apply (substr_spec T HT HD) | now apply (trim_spec T HT HD)].
Qed.

Lemma ecma_string_cut_witness : runs (ecma_string_substr default_tables 0 1 2) string_world (made default_tables (take 0 (fun _ => 0)) (blocks string_world) [98])
  /\ match ecma_string_substr default_tables 0 1 2 string_world with OK p w' => relational_chars default_tables (blocks w') p = Some [98] | _ => False end.
Proof.
  split; [| now vm_compute].
  apply (proj1 (ecma_string_cut_correct default_tables (take 0 (fun _ => 0)) string_world 0 [97; 98] default_tables_ok default_direct string_world_good
    ltac:(repeat constructor; cbv; discriminate) example_text) 1 2); now vm_compute.
Defined.
