(* ===== verification/StringInput.v ===== *)
(** * Strings from the embedder

    UTF-8 of the embedder becomes the encoding of the engine, with surrogate
    pairs for the characters of four bytes; a buffer of the embedder becomes an
    external string, or is given back at once.  UTF-16 gets a wrong length. *)
From Stdlib Require Import ZArith Lia Bool List.
From stdpp Require Import base gmap list.
From S2P Require Import Prelude LitChars LitStrings JmemHeap JmemPointers Values BlockHeap MagicStrings MagicTable StringData Decimal.
From S2P Require Import StringRepr StringAccess Ownership Counting Release Strings StringTheory StringJoin StringCut.
Import ListNotations.
#[local] Open Scope Z_scope.

(** ** UTF-8 *)

Lemma mask_248 b : is_u8 b -> (Z.land b 248 =? 240) = (240 <=? b) && (b <? 248).
Proof. intros Hb. apply eqb_true_iff. revert b Hb. apply bytes_all. now vm_compute. Qed.

(** The bytes of a code unit are copied one by one *)
Lemma unit_not_four u : is_u16 u -> Forall (fun b => is_4_byte b = false) (lit_code_unit_to_utf8 u).
Proof.
  intros Hu. pose proof (unit_bytes_u8 u Hu) as Hb. rewrite code_unit_bytes by exact Hu.
  assert (Hsmall : Forall (fun b => is_u8 b /\ b < 240) (unit_bytes u)).
  { unfold unit_bytes in *. unfold is_u16 in Hu. destruct (u <? 128) eqn:E1; [| destruct (u <? 2048) eqn:E2]; zbool;
      repeat match goal with H : Forall _ (_ :: _) |- _ => apply Forall_cons_iff in H as [? H] end; repeat constructor; try (apply H || assumption); zmod. }
  eapply Forall_impl; [exact Hsmall |]. intros b [H8 Hlt]. unfold is_4_byte. rewrite mask_248 by exact H8. apply andb_false_iff. left. apply Z.leb_gt. lia.
Qed.

(** The two functions that write a code point agree *)
Lemma cesu8_bytes_unit u : is_u16 u -> lit_code_point_to_cesu8_bytes u = lit_code_unit_to_utf8 u.
Proof.
  intros Hu. rewrite code_unit_bytes by exact Hu. unfold is_u16 in Hu. unfold lit_code_point_to_cesu8_bytes, unit_bytes. mask_to_mod.
  destruct (Z.ltb_spec u 128); [now rewrite Z.mod_small by lia |]. destruct (Z.ltb_spec u 2048).
  - rewrite lor_192, lor_128 by zmod. repeat (apply (f_equal2 (@cons Z)); [zmod |]). reflexivity.
  - destruct (Z.ltb_spec u 65536); [| lia]. change (2 ^ 12) with 4096. rewrite lor_224, !lor_128 by zmod. repeat (apply (f_equal2 (@cons Z)); [zmod |]). reflexivity.
Qed.

Lemma cesu8_bytes_pair cp : 65535 < cp <= 1114111 -> let c := cp - 65536 in
  lit_code_point_to_cesu8_bytes cp = lit_code_unit_to_utf8 (55296 + c / 1024) ++ lit_code_unit_to_utf8 (56320 + c mod 1024).
Proof.
  intros Hc. cbv zeta. rewrite !code_unit_bytes by (unfold is_u16; zmod). unfold lit_code_point_to_cesu8_bytes, unit_bytes.
  rewrite !(proj2 (Z.ltb_ge _ _)) by zmod. cbv zeta. set (c := cp - 65536). assert (Hr : 0 <= c < 1048576) by lia. clearbody c. mask_to_mod.
  rewrite ?Z.shiftr_div_pow2 by lia. change (2 ^ 16) with 65536. change (2 ^ 10) with 1024. change (Z.lor 224 13) with 237. change (Z.lor 128 32) with 160. change (Z.lor 128 48) with 176.
  assert (H160 : forall x, 0 <= x < 16 -> Z.lor 160 x = 160 + x) by (intros x Hx; exact (lor_mul_low 10 x 4 ltac:(lia) Hx)).
  assert (H176 : forall x, 0 <= x < 16 -> Z.lor 176 x = 176 + x) by (intros x Hx; exact (lor_mul_low 11 x 4 ltac:(lia) Hx)).
  rewrite H160, H176, !lor_128 by zmod. cbn [app]. repeat (apply (f_equal2 (@cons Z)); [zmod |]). reflexivity.
Qed.

(** Code points above the basic plane are the pairs *)
Lemma pair_of cp : 65535 < cp <= 1114111 -> let c := cp - 65536 in
  is_high (55296 + c / 1024) /\ is_low (56320 + c mod 1024) /\ pair_code_point (55296 + c / 1024) (56320 + c mod 1024) = cp.
Proof. intros Hc. cbv zeta. surrogate_bounds. unfold pair_code_point. splits; zmod. Qed.

Lemma cesu8_bytes_eq cp : is_code_point cp -> lit_code_point_to_cesu8_bytes cp = lit_code_point_to_cesu8 cp.
Proof.
  intros Hc. unfold is_code_point in Hc. destruct (Z.le_gt_cases cp 65535).
  - assert (Hu : is_u16 cp) by (unfold is_u16; lia). now rewrite cesu8_bytes_unit, code_point_to_cesu8_unit.
  - assert (Hc' : 65535 < cp <= 1114111) by lia. rewrite cesu8_bytes_pair by exact Hc'. destruct (pair_of cp Hc') as (Hh & Hl & E).
    pose proof (code_point_to_cesu8_pair _ _ Hh Hl) as E2. destruct (pair_value _ _ Hh Hl) as (E0 & _). rewrite E0, E in E2. now rewrite E2.
Qed.

Lemma four_byte_spec cp rest : 65535 < cp <= 1114111 -> lit_four_byte_utf8_char_to_cesu8 (lit_code_point_to_utf8 cp ++ rest) = Some (lit_code_point_to_cesu8 cp).
Proof.
  intros Hc. rewrite code_point_bytes by exact Hc. cbn [app]. unfold lit_four_byte_utf8_char_to_cesu8. cbv zeta.
  assert (H7 : forall z, Z.land z 7 = z mod 8) by (intros z; exact (Z.land_ones z 3 ltac:(lia))). assert (H63 : forall z, Z.land z 63 = z mod 64) by (intros z; exact (Z.land_ones z 6 ltac:(lia))).
  rewrite H7, !H63, !Z.shiftl_mul_pow2 by lia. change (2 ^ 18) with 262144. change (2 ^ 12) with 4096. change (2 ^ 6) with 64.
  set (a := (240 + cp / 262144) mod 8). set (b := (128 + (cp / 4096) mod 64) mod 64). set (c := (128 + (cp / 64) mod 64) mod 64). set (d := (128 + cp mod 64) mod 64).
  assert (Ha : 0 <= a < 8) by (unfold a; zmod). assert (Hb : 0 <= b < 64) by (unfold b; zmod). assert (Hcc : 0 <= c < 64) by (unfold c; zmod). assert (Hd : 0 <= d < 64) by (unfold d; zmod).
  rewrite !u32_small by (unfold is_u32; lia).
  pose proof (lor_mul_low a (b * 4096) 18 ltac:(lia) ltac:(lia)) as E1. change (2 ^ 18) with 262144 in E1. rewrite E1.
  pose proof (lor_mul_low (a * 64 + b) (c * 64) 12 ltac:(lia) ltac:(lia)) as E2. change (2 ^ 12) with 4096 in E2.
  replace (a * 262144 + b * 4096) with ((a * 64 + b) * 4096) by lia. rewrite E2.
  pose proof (lor_mul_low ((a * 64 + b) * 64 + c) d 6 ltac:(lia) ltac:(lia)) as E3. change (2 ^ 6) with 64 in E3.
  replace ((a * 64 + b) * 4096 + c * 64) with (((a * 64 + b) * 64 + c) * 64) by lia. rewrite E3. rewrite <- cesu8_bytes_eq by (unfold is_code_point; lia). do 2 f_equal. unfold a, b, c, d. zmod.
Qed.

Lemma convert_bytes bytes rest : Forall (fun b => is_4_byte b = false) bytes -> forall fuel r, (length (bytes ++ rest) <= fuel)%nat ->
  (forall fuel', (length rest <= fuel')%nat -> convert_loop fuel' rest = Some r) -> convert_loop fuel (bytes ++ rest) = Some (bytes ++ r).
Proof.
  induction 1 as [| b bytes Hb _ IH]; intros fuel r Hf Hrest; [now apply Hrest |]. cbn [app] in *. destruct fuel as [| fuel]; [cbn in Hf; lia |]. cbn [convert_loop].
  rewrite Hb, (IH fuel r) by (assumption || (cbn in Hf; lia)). reflexivity.
Qed.

(** A code point of a pair *)
Lemma pair_range h l : is_high h -> is_low l -> 65536 <= pair_code_point h l <= 1114111 /\ lit_code_point_to_cesu8 (pair_code_point h l) = lit_code_unit_to_utf8 h ++ lit_code_unit_to_utf8 l.
Proof.
  intros Hh Hl. pose proof (code_point_to_cesu8_pair h l Hh Hl) as E. destruct (pair_value h l Hh Hl) as (E0 & _). rewrite E0 in E. split; [| exact E].
  surrogate_bounds. unfold pair_code_point. lia.
Qed.

Lemma convert_spec units : Forall is_u16 units -> forall fuel, (length (utf8_encode (code_points units)) <= fuel)%nat ->
  convert_loop fuel (utf8_encode (code_points units)) = Some (cesu8_encode units).
Proof.
  induction units as [| h l units Hh Hl IH | u units Hsingle IH] using code_points_ind; intros Hu fuel Hf.
  - destruct fuel; reflexivity.
  - apply Forall_cons_iff in Hu as [_ Hu]. apply Forall_cons_iff in Hu as [_ Hu]. destruct (pair_range h l Hh Hl) as [Hr E].
    rewrite code_points_pair, utf8_encode_cons in * by assumption. assert (Hr' : 65535 < pair_code_point h l <= 1114111) by lia.
    pose proof (four_byte_spec _ (utf8_encode (code_points units)) Hr') as E4.
    rewrite code_point_bytes in * by lia. cbn [app] in *. destruct fuel as [| fuel]; [cbn in Hf; lia |]. cbn [convert_loop].
    assert (Hfour : is_4_byte (240 + pair_code_point h l / 262144) = true).
    { unfold is_4_byte. assert (0 <= pair_code_point h l / 262144 < 5) by zmod. rewrite mask_248 by (unfold is_u8; lia). apply andb_true_iff. rewrite Z.leb_le, Z.ltb_lt. lia. }
    rewrite Hfour, E4. unfold advance. change (skipn (Z.to_nat 4)) with (@skipn Z 4). cbn [skipn]. rewrite IH by (assumption || (cbn in Hf; lia)). cbn [option_map].
    rewrite E, !cesu8_encode_cons, <- app_assoc. reflexivity.
  - apply Forall_cons_iff in Hu as [Hu16 Hu]. rewrite code_points_single, utf8_encode_cons in * by exact Hsingle. rewrite code_point_to_utf8_unit in * by (unfold is_u16 in Hu16; lia).
    rewrite cesu8_encode_cons. apply convert_bytes; [now apply unit_not_four | exact Hf |]. intros fuel' Hf'. now apply IH.
Qed.

Lemma unit_first u : is_u16 u -> exists c extra, lit_code_unit_to_utf8 u = c :: extra
  /\ ((is_1_byte c = true /\ zlength (lit_code_unit_to_utf8 u) = 1) \/ (is_1_byte c = false /\ is_2_byte c = true /\ zlength (lit_code_unit_to_utf8 u) = 2)
      \/ (is_1_byte c = false /\ is_2_byte c = false /\ is_3_byte c = true /\ zlength (lit_code_unit_to_utf8 u) = 3)).
Proof.
  intros Hu. pose proof (unit_bytes_u8 u Hu) as Hb. rewrite code_unit_bytes by exact Hu. unfold is_u16 in Hu. unfold unit_bytes in *.
  destruct (Z.ltb_spec u 128); [| destruct (Z.ltb_spec u 2048)]; eexists _, _; (split; [reflexivity |]); apply Forall_cons_iff in Hb as [Hb _]; destruct (byte_tests _ Hb) as (-> & -> & -> & _).
  - left. split; [now apply Z.ltb_lt | reflexivity].
  - right. left. rewrite Z.ltb_ge, andb_true_iff, Z.leb_le, Z.ltb_lt. splits; try reflexivity; zmod.
  - right. right. rewrite Z.ltb_ge, andb_true_iff, andb_false_iff, !Z.leb_le, Z.leb_gt, Z.ltb_lt, Z.ltb_ge. splits; try reflexivity; zmod.
Qed.

Lemma converted_length_spec units : Forall is_u16 units -> forall fuel length size, (List.length (utf8_encode (code_points units)) <= fuel)%nat ->
  converted_length_loop fuel (utf8_encode (code_points units)) length size
  = Some (length + zlength units, size + (zlength (cesu8_encode units) - zlength (utf8_encode (code_points units)))).
Proof.
  induction units as [| h l units Hh Hl IH | u units Hsingle IH] using code_points_ind; intros Hu fuel length size Hf.
  - assert (E : converted_length_loop fuel [] length size = Some (length, size)) by now destruct fuel.
    change (utf8_encode (code_points [])) with (@nil Z). change (cesu8_encode []) with (@nil Z). rewrite (@zlength_nil Z), E. do 2 f_equal; lia.
  - apply Forall_cons_iff in Hu as [_ Hu]. apply Forall_cons_iff in Hu as [_ Hu]. destruct (pair_range h l Hh Hl) as [Hr _].
    rewrite code_points_pair, utf8_encode_cons, !cesu8_encode_cons, !zlength_app, !zlength_cons, !high_length in * by tauto.
    rewrite code_point_bytes in * by lia. cbn [app] in *. destruct fuel as [| fuel]; [cbn in Hf; lia |]. cbn [converted_length_loop].
    assert (Hfour : is_u8 (240 + pair_code_point h l / 262144) /\ 240 <= 240 + pair_code_point h l / 262144) by (unfold is_u8; split; zmod).
    destruct (byte_tests _ (proj1 Hfour)) as (-> & -> & -> & _). destruct (Z.ltb_spec (240 + pair_code_point h l / 262144) 128); [lia |].
    destruct (Z.ltb_spec (240 + pair_code_point h l / 262144) 224); [lia |]. destruct (Z.ltb_spec (240 + pair_code_point h l / 262144) 240); [lia |]. rewrite !andb_false_r.
    unfold advance. change (skipn (Z.to_nat 4)) with (@skipn Z 4). cbn [skipn]. rewrite IH by (assumption || (cbn in Hf; lia)). unfold zlength. cbn [List.length]. do 2 f_equal; lia.
  - apply Forall_cons_iff in Hu as [Hu16 Hu]. rewrite code_points_single, utf8_encode_cons, cesu8_encode_cons, !zlength_app, zlength_cons in * by exact Hsingle.
    rewrite code_point_to_utf8_unit in * by (unfold is_u16 in Hu16; lia). destruct (unit_first u Hu16) as (c & extra & E & Hc).
    destruct fuel as [| fuel]; [rewrite E in Hf; cbn in Hf; lia |].
    assert (Hstep : forall l s, converted_length_loop fuel (advance (zlength (lit_code_unit_to_utf8 u)) (lit_code_unit_to_utf8 u ++ utf8_encode (code_points units))) l s
      = Some (l + zlength units, s + (zlength (cesu8_encode units) - zlength (utf8_encode (code_points units))))).
    { intros l s. rewrite advance_app. apply IH; [exact Hu |]. rewrite E in Hf. cbn in Hf. rewrite length_app in Hf. lia. }
    assert (Ecase : converted_length_loop (S fuel) (lit_code_unit_to_utf8 u ++ utf8_encode (code_points units)) length size
      = converted_length_loop fuel (advance (zlength (lit_code_unit_to_utf8 u)) (lit_code_unit_to_utf8 u ++ utf8_encode (code_points units))) (length + 1) size).
    { rewrite E at 1. cbn [app converted_length_loop]. rewrite E at 2. cbn [app]. destruct Hc as [(-> & ->) | [(-> & -> & ->) | (-> & -> & -> & ->)]]; reflexivity. }
    rewrite Ecase, Hstep. do 2 f_equal; lia.
Qed.

(** ** Notes *)

(** A computation without calls of the embedder's callback *)
Definition quiet {BH : BlockHeap} {A} (m : W content A) : Prop := forall w, match m w with OK _ w' => notes w' = notes w | _ => True end.

Section Input.
Context {BH : BlockHeap} (T : magic_tables) (callback : bool) (HT : tables_ok T) (HD : tables_direct T).

Lemma quiet_ret {A} (a : A) : quiet (mret a).
Proof. intros w. reflexivity. Qed.
Lemma quiet_fault {A} : quiet (A := A) fault.
Proof. intros w. exact I. Qed.
Lemma quiet_bind {A B} (m : W content A) (f : A -> W content B) : quiet m -> (forall a, quiet (f a)) -> quiet (m ≫= f).
Proof.
  intros Hm Hf w. unfold mbind, W_bind. specialize (Hm w). destruct (m w) as [a w' | |]; try exact I. specialize (Hf a w'). destruct (f a w'); try exact I. congruence.
Qed.
Lemma quiet_reading {A} (f : memory -> option A) : quiet (reading f).
Proof. intros w. unfold reading. now destruct (f (blocks w)). Qed.
Lemma quiet_alloc n : quiet (jmem_heap_alloc_block (B := content) n).
Proof. intros w. unfold jmem_heap_alloc_block. now destruct (heap_alloc_block n (heap_of w)) as [[? ?] |]. Qed.
Lemma quiet_write p c : quiet (write_block p c).
Proof. intros w. unfold write_block. destruct (blocks w !! p) as [[? ?] |]; [| exact I]. now destruct (fits _ _). Qed.

Lemma runs_quiet {A} (m : W content A) w (Q : A -> world content -> Prop) : quiet m -> runs m w Q -> runs m w (fun a w' => Q a w' /\ notes w' = notes w).
Proof. intros Hm. unfold runs. specialize (Hm w). destruct (m w); [now split | easy | easy]. Qed.
End Input.

Ltac quiet_steps :=
  repeat match goal with
  | |- quiet (mret _) => apply quiet_ret
  | |- quiet fault => apply quiet_fault
  | |- quiet (_ ≫= _) => apply quiet_bind; [| intros ?]
  | |- quiet (reading _) => apply quiet_reading
  | |- quiet (jmem_heap_alloc_block _) => apply quiet_alloc
  | |- quiet (write_block _ _) => apply quiet_write
  | |- quiet (match ?x with _ => _ end) => destruct x
  end.

Section Embedder.
Context {BH : BlockHeap} (T : magic_tables) (callback : bool) (HT : tables_ok T) (HD : tables_direct T).

Lemma quiet_special s : quiet (ecma_find_special_string T s).
Proof.
  unfold ecma_find_special_string, ecma_new_ecma_string_from_uint32, ecma_new_non_direct_string_from_uint32, ecma_new_ecma_string_from_magic_string_ex_id, ecma_alloc_string, write_string.
  cbv zeta. quiet_steps.
Qed.

Lemma quiet_utf8 s : quiet (ecma_new_ecma_string_from_utf8 T s).
Proof.
  unfold ecma_new_ecma_string_from_utf8, ecma_new_ecma_string_from_utf8_buffer, ecma_alloc_string_buffer, fill_string, read_string, write_string.
  apply quiet_bind; [apply quiet_special |]. intros r. cbv zeta. quiet_steps.
Qed.

(** ** UTF-8 *)

(** Pairs take six bytes instead of four *)
Lemma encode_sizes units : Forall is_u16 units ->
  zlength (utf8_encode (code_points units)) <= zlength (cesu8_encode units)
  /\ (zlength (utf8_encode (code_points units)) = zlength (cesu8_encode units) -> utf8_encode (code_points units) = cesu8_encode units).
Proof.
  induction units as [| h l units Hh Hl IH | u units Hsingle IH] using code_points_ind; intros Hu; [split; reflexivity | |].
  - apply Forall_cons_iff in Hu as [_ Hu]. apply Forall_cons_iff in Hu as [_ Hu]. destruct (IH Hu) as [Hle _]. destruct (pair_range h l Hh Hl) as [Hr _].
    rewrite code_points_pair, utf8_encode_cons, !cesu8_encode_cons, !zlength_app, !high_length, pair_length by tauto. split; lia.
  - apply Forall_cons_iff in Hu as [Hu16 Hu]. destruct (IH Hu) as [Hle Heq]. rewrite code_points_single, utf8_encode_cons, cesu8_encode_cons, !zlength_app by exact Hsingle.
    rewrite code_point_to_utf8_unit by (unfold is_u16 in Hu16; lia). split; [lia |]. intros E. rewrite Heq by lia. reflexivity.
Qed.

Lemma pairs_not_special units : Forall is_u16 units -> utf8_encode (code_points units) <> cesu8_encode units -> index_of (cesu8_encode units) (lit_magic_string_ex_array T) = None ->
  special T (cesu8_encode units) = None /\ cesu8_encode units <> [].
Proof.
  intros Hu Hne Hex. assert (Hascii : ~ Forall is_ascii (cesu8_encode units)).
  { intros Ha. apply Hne. destruct (encode_same_length units Hu) as [-> Ha'].
    - pose proof (ascii_length _ Ha) as E. rewrite text_length in E by exact Hu. congruence.
    - destruct (code_points_ascii units Ha') as [-> ->]. reflexivity. }
  split; [| intros E; apply Hascii; rewrite E; constructor]. unfold special. destruct (index_of (cesu8_encode units) (lit_magic_strings T)) as [id |] eqn:Ei.
  - exfalso. apply Hascii. pose proof (magic_ascii T HT) as Ha. rewrite List.Forall_forall in Ha. apply Ha. apply at_index_in. exists id. now apply (index_of_some _ _ _ (magic_sorted T HT)).
  - destruct (number_of (cesu8_encode units)) as [n |] eqn:En; [| now rewrite Hex]. exfalso. apply Hascii. apply number_of_some in En as [Hn ->]. now apply decimal_ascii.
Qed.

Lemma converted_spec units held w : good held w -> Forall is_u16 units -> zlength (cesu8_encode units) < B32 - 1 ->
  index_of (cesu8_encode units) (lit_magic_string_ex_array T) = None ->
  runs (ecma_new_ecma_string_from_utf8_converted_to_cesu8 T (utf8_encode (code_points units))) w (made T held (blocks w) (cesu8_encode units)).
Proof.
  intros Hgood Hu Hsize Hex. pose proof (proj1 Hgood) as Ho. destruct (encode_sizes units Hu) as [Hle Heq]. pose proof (zlength_nonneg (utf8_encode (code_points units))) as Hnn.
  assert (Htext : is_text (cesu8_encode units)) by now exists units.
  unfold ecma_new_ecma_string_from_utf8_converted_to_cesu8. apply runs_bind. eapply runs_reading; [now apply converted_length_spec |]. cbv beta iota zeta. rewrite !Z.add_0_l.
  destruct (Z.eqb_spec (zlength (cesu8_encode units) - zlength (utf8_encode (code_points units))) 0) as [E | E].
  { rewrite Heq by lia. now apply (new_utf8_spec T HT HD). }
  destruct (pairs_not_special units Hu) as [Hspecial Hne]; [intros E'; rewrite E' in E; lia | exact Hex |].
  replace (zlength (cesu8_encode units) - zlength (utf8_encode (code_points units)) + zlength (utf8_encode (code_points units))) with (zlength (cesu8_encode units)) by lia.
  rewrite u32_small by (unfold is_u32; lia). apply runs_bind. eapply new_buffer_spec; [exact Ho | apply zlength_nonneg |]. intros p w1 Hb Hnew Ho1 Hlay _.
  destruct (layout (zlength units) (zlength (cesu8_encode units))) as [[n refs] d] eqn:El. apply runs_bind. eapply runs_reading; [now apply convert_spec |].
  apply runs_bind. eapply (fill_spec p _ _ w1 (zlength units)). rewrite El. split; [exact Ho1 |]. split; [rewrite Hlay; apply lookup_insert_eq |].
  intros w2 Ho2 Hb2 _. apply runs_ret. eapply (made_block T); try eassumption; [exact (proj2 Hgood) | now apply text_length |]. now rewrite Hb2, Hlay, insert_insert_eq.
Qed.

(** ** External strings *)

(** The block refers to the buffer of the embedder *)
Definition borrows (string : list Z) (user : Z) (m : memory) (p : Z) : Prop :=
  exists n x length, m !! p = Some (n, Some (BLOCK_STRING x)) /\ data x = EXTERNAL (zlength string) length string user.

Lemma external_spec s user held w : good held w -> is_text s -> zlength s < B32 - 1 ->
  runs (ecma_new_ecma_external_string_from_cesu8 T callback s user) w (fun p w' => made T held (blocks w) s p w'
    /\ (released_note callback s user w w' \/ (notes w' = notes w /\ borrows s user (blocks w') p))).
Proof.
  intros Hgood Htext Hsize. pose proof (proj1 Hgood) as Ho. unfold ecma_new_ecma_external_string_from_cesu8. cbv zeta.
  assert (Hback : forall p w1, made T held (blocks w) s p w1 -> notes w1 = notes w ->
    runs (_ ← (if callback then note (s, user) else mret tt); mret p) w1 (fun p w' => made T held (blocks w) s p w'
      /\ (released_note callback s user w w' \/ (notes w' = notes w /\ borrows s user (blocks w') p)))).
  { intros p w1 (Hs & [Ho1 Hc1] & Hk) Hn. apply runs_bind, runs_callback. intros w2 Hh Hb Hnote. apply runs_ret. split.
    - split; [now rewrite Hb |]. split; [| now rewrite Hb]. split; [| now rewrite Hb]. unfold owns in *. now rewrite Hh, Hb.
    - left. unfold released_note in *. now rewrite Hnote, Hn. }
  destruct (zlength s <? sizeof_ecma_external_string_t - sizeof_ecma_short_string_t).
  { apply runs_bind. eapply runs_mono; [apply runs_quiet; [apply quiet_utf8 | now apply (new_utf8_spec T HT HD held)] |]. intros p w1 [Hm Hn]. now apply Hback. }
  apply runs_bind. eapply runs_mono; [apply runs_quiet; [apply quiet_special | now apply (find_special_spec T HT HD held)] |].
  intros [p |] w1 [Hm Hn]; [now apply Hback |]. destruct Hm as (Hspecial & Hne & ->). pose proof Htext as (units & Hu & E).
  assert (Hlen : lit_utf8_string_length s = Some (zlength units)) by (rewrite E; now apply text_length).
  unfold ecma_alloc_external_string. apply runs_bind. eapply runs_alloc; [exact Ho | unfold sizeof_ecma_external_string_t; lia |]. intros p h w2 Ho2 Hnew H8 H0 Hend. subst w2.
  apply runs_bind. eapply runs_reading; [exact Hlen |]. apply runs_bind. unfold write_string.
  eapply runs_write; [exact Ho2 | apply lookup_insert_eq | reflexivity |]. intros w3 Ho3. subst w3. cbn [blocks heap_of notes] in *. rewrite insert_insert_eq in *. apply runs_ret.
  assert (Hb : is_block p) by (eapply (new_block p); [| exact H8 | exact H0 | exact Hend]; unfold sizeof_ecma_external_string_t; lia).
  split; [| right; split; [reflexivity |]; do 3 eexists; cbn [blocks]; rewrite lookup_insert_eq; now split]. cbn [blocks]. split.
  - split; [exact Htext |]. split; [exact Hsize |]. rewrite Hspecial. split; [exact Hb |]. eexists. cbn [blocks]. rewrite string_at_insert. split; [reflexivity |].
    split; [reflexivity |]. split; [exact Hne |]. now splits.
  - eapply good_new; [exact (proj2 Hgood) | exact Hb | exact Hnew | exact Ho3 | reflexivity | | reflexivity]. split; [| right; splits; [reflexivity | reflexivity | lia]].
    split; [split; now vm_compute |]. now split.
Qed.
End Embedder.

(** ** Properties *)

(** C22: new strings: whether a string below 2^32 - 1 bytes is made from the engine's own
    encoding, from ASCII, from an integer, from one or two code units, from a buffer
    of the embedder, or from UTF-8 (whose text is none of the magic strings of the
    embedder: a text with characters of four bytes is not looked up there), the
    result is the string with exactly those characters in the one representation it
    has, it is one reference more, every counter stays exact and no held string
    changes.  A buffer of the embedder is given back with the callback unless the
    new string keeps it.  Strings from UTF-16 are not covered: [utf16_wrong_length]
    and [utf16_not_special]. *)
Theorem ecma_new_ecma_string_correct {BH : BlockHeap} T callback held (w : world content) : tables_ok T -> tables_direct T -> good held w ->
  (forall s, is_text s -> zlength s < B32 - 1 -> runs (ecma_new_ecma_string_from_utf8 T s) w (made T held (blocks w) s))
  /\ (forall s, Forall is_ascii s -> zlength s < B32 - 1 -> runs (ecma_new_ecma_string_from_ascii T s) w (made T held (blocks w) s))
  /\ (forall n, is_u32 n -> runs (ecma_new_ecma_string_from_uint32 n) w (made T held (blocks w) (decimal n)))
  /\ (forall u, is_u16 u -> runs (ecma_new_ecma_string_from_code_unit T u) w (made T held (blocks w) (cesu8_encode [u])))
  /\ (forall u v, is_u16 u -> is_u16 v -> runs (ecma_new_ecma_string_from_code_units T u v) w (made T held (blocks w) (cesu8_encode [u; v])))
  /\ (forall units, Forall is_u16 units -> zlength (cesu8_encode units) < B32 - 1 -> index_of (cesu8_encode units) (lit_magic_string_ex_array T) = None ->
      runs (ecma_new_ecma_string_from_utf8_converted_to_cesu8 T (utf8_encode (code_points units))) w (made T held (blocks w) (cesu8_encode units)))
  /\ (forall s user, is_text s -> zlength s < B32 - 1 ->
      runs (ecma_new_ecma_external_string_from_cesu8 T callback s user) w (fun p w' => made T held (blocks w) s p w'
        /\ (notes w' = notes w ++ (if callback then [(s, user)] else []) \/ (notes w' = notes w /\ borrows s user (blocks w') p)))).
Proof.
  intros HT HD Hgood. splits; intros.
  - now apply (new_utf8_spec T HT HD).
  - now apply (new_ascii_spec T HT HD).
  - now apply (new_uint32_spec T HT).
  - now apply (code_unit_spec T HT HD).
  - now apply (code_units_spec T HT HD).
  - now apply (converted_spec T HT HD).
  - now apply (external_spec T callback HT HD).
Qed.

(** A character of four bytes becomes two code units; its length is two *)
Lemma ecma_new_ecma_string_witness : runs (ecma_new_ecma_string_from_utf8_converted_to_cesu8 default_tables [240; 159; 152; 128]) string_world
    (made default_tables (take 0 (fun _ => 0)) (blocks string_world) [237; 160; 189; 237; 184; 128])
  /\ match ecma_new_ecma_string_from_utf8_converted_to_cesu8 default_tables [240; 159; 152; 128] string_world with
     | OK p w' => ecma_string_get_length default_tables (blocks w') p = Some 2 | _ => False end.
Proof.
  split; [| now vm_compute].
  apply (proj1 (proj2 (proj2 (proj2 (proj2 (proj2 (ecma_new_ecma_string_correct default_tables true (take 0 (fun _ => 0)) string_world default_tables_ok default_direct string_world_good)))))) [55357; 56832]).
  - repeat constructor; cbv; discriminate.
  - now vm_compute.
  - reflexivity.
Defined.

(** The same characters from UTF-16: the length counts code points, the string
    is not equal to the one above *)
Lemma utf16_wrong_length :
  match ecma_new_ecma_string_from_utf16 [55357; 56832] string_world with
  | OK p w =>
      ecma_string_get_length default_tables (blocks w) p = Some 1 /\ relational_chars default_tables (blocks w) p = Some [237; 160; 189; 237; 184; 128]
      /\ match ecma_new_ecma_string_from_utf8_converted_to_cesu8 default_tables [240; 159; 152; 128] w with
         | OK q w' => ecma_compare_ecma_strings (blocks w') p q = Some false
         | _ => False
         end
  | _ => False
  end.
Proof. now vm_compute. Qed.

(** UTF-16 never gives a magic string: "length" is not equal to itself *)
Lemma utf16_not_special :
  let s := [108; 101; 110; 103; 116; 104] in
  match ecma_new_ecma_string_from_utf16 s string_world with
  | OK p w => match ecma_new_ecma_string_from_utf8 default_tables s w with
              | OK q w' => relational_chars default_tables (blocks w') p = Some s /\ relational_chars default_tables (blocks w') q = Some s
                  /\ ecma_compare_ecma_strings (blocks w') p q = Some false
              | _ => False
              end
  | _ => False
  end.
Proof. now vm_compute. Qed.
