(* ===== verification/StringBuilder.v ===== *)
(** * String builders: ecma_stringbuilder_* of src/jjs-core/ecma/base/ecma-helpers-string.c

    A builder is a block that grows with every append; its header has the size
    of an ASCII string's header, so that finalizing a short ASCII string only
    fills the header in.  The builder is its header pointer, which the operations
    return anew. *)
From Stdlib Require Import ZArith Lia Bool List.
From stdpp Require Import base gmap list.
From S2P Require Import Prelude LitChars LitStrings JmemHeap JmemPointers Values BlockHeap MagicStrings MagicTable StringData Decimal.
From S2P Require Import StringRepr StringAccess Ownership Counting Release Strings StringTheory StringJoin StringCut StringInput.
Import ListNotations.
#[local] Open Scope Z_scope.

(** The header and the bytes of a builder *)
Definition builder_in (m : memory) (header_p : Z) : option (Z * list Z) :=
  match block_at m header_p with Some (BLOCK_BUILDER current_size buffer) => Some (current_size, buffer) | _ => None end.

Section Operations.
Context {BH : BlockHeap} (T : magic_tables).

Definition read_builder (header_p : Z) : W content (Z * list Z) := reading (fun m => builder_in m header_p).

Definition ECMA_STRINGBUILDER_STRING_SIZE (current_size : Z) : Z := u32 (current_size - ECMA_ASCII_STRING_HEADER_SIZE).

(** memcpy behind the first [offset] bytes of the buffer *)
Definition store_at (header_p offset : Z) (bytes : list Z) : W content unit :=
  '(current_size, buffer) ← read_builder header_p;
  if (0 <=? offset) && (offset + zlength bytes <=? zlength buffer) then
    write_block header_p (BLOCK_BUILDER current_size
      (firstn (Z.to_nat offset) buffer ++ bytes ++ skipn (Z.to_nat (offset + zlength bytes)) buffer))
  else fault.

(** Bytes that were not stored yet are zeros *)
Definition with_room (size : Z) (buffer : list Z) : list Z := buffer ++ repeat 0 (Z.to_nat (size - ECMA_ASCII_STRING_HEADER_SIZE - zlength buffer)).

Definition ecma_stringbuilder_create : W content Z :=
  header_p ← jmem_heap_alloc_block ECMA_ASCII_STRING_HEADER_SIZE;
  _ ← write_block header_p (BLOCK_BUILDER ECMA_ASCII_STRING_HEADER_SIZE []);
  mret header_p.

(** The strings are copied one behind the other *)
Fixpoint store_strings (header_p ptr : Z) (strings : list (Z * Z)) : W content unit :=
  match strings with
  | [] => mret tt
  | (string_p, size) :: strings =>
      bytes ← reading (fun m => ecma_string_to_cesu8_bytes T m string_p size);
      _ ← store_at header_p ptr bytes;
      store_strings header_p (ptr + size) strings
  end.

(** Strings with their sizes *)
Definition ecma_stringbuilder_create_from_array (strings : list (Z * Z)) : W content Z :=
  let initial_size := fold_left (fun initial_size s => u32 (initial_size + snd s)) strings ECMA_ASCII_STRING_HEADER_SIZE in
  header_p ← jmem_heap_alloc_block initial_size;
  _ ← write_block header_p (BLOCK_BUILDER initial_size (with_room initial_size []));
  _ ← store_strings header_p 0 strings;
  mret header_p.

Definition ecma_stringbuilder_create_from (string_p : Z) : W content Z :=
  size ← reading (fun m => ecma_string_get_size T m string_p);
  ecma_stringbuilder_create_from_array [(string_p, size)].

Definition ecma_stringbuilder_create_raw (data : list Z) : W content Z :=
  let initial_size := u32 (zlength data + ECMA_ASCII_STRING_HEADER_SIZE) in
  header_p ← jmem_heap_alloc_block initial_size;
  _ ← write_block header_p (BLOCK_BUILDER initial_size (with_room initial_size []));
  _ ← store_at header_p 0 data;
  mret header_p.

(** The header and the offset of the new room in the buffer *)
Definition ecma_stringbuilder_grow (header_p required_size : Z) : W content (Z * Z) :=
  '(current_size, _) ← read_builder header_p;
  let new_size := u32 (current_size + required_size) in
  header_p ← jmem_heap_realloc_block header_p current_size new_size;
  '(_, buffer) ← read_builder header_p;
  _ ← write_block header_p (BLOCK_BUILDER new_size (with_room new_size buffer));
  mret (header_p, new_size - required_size - ECMA_ASCII_STRING_HEADER_SIZE).

Definition ecma_stringbuilder_get_size (header_p : Z) : W content Z :=
  '(current_size, _) ← read_builder header_p; mret (ECMA_STRINGBUILDER_STRING_SIZE current_size).

Definition ecma_stringbuilder_get_data (header_p : Z) : W content (list Z) := '(_, buffer) ← read_builder header_p; mret buffer.

Definition ecma_stringbuilder_revert (header_p size : Z) : W content Z :=
  '(current_size, _) ← read_builder header_p;
  let new_size := u32 (size + ECMA_ASCII_STRING_HEADER_SIZE) in
  header_p ← jmem_heap_realloc_block header_p current_size new_size;
  '(_, buffer) ← read_builder header_p;
  _ ← write_block header_p (BLOCK_BUILDER new_size buffer);
  mret header_p.

Definition ecma_stringbuilder_append_raw (header_p : Z) (data : list Z) : W content Z :=
  '(header_p, dest) ← ecma_stringbuilder_grow header_p (zlength data);
  _ ← store_at header_p dest data;
  mret header_p.

Definition ecma_stringbuilder_append (header_p string_p : Z) : W content Z :=
  string_size ← reading (fun m => ecma_string_get_size T m string_p);
  '(header_p, dest) ← ecma_stringbuilder_grow header_p string_size;
  bytes ← reading (fun m => ecma_string_to_cesu8_bytes T m string_p string_size);
  _ ← store_at header_p dest bytes;
  mret header_p.

Definition ecma_stringbuilder_append_magic (header_p id : Z) : W content Z :=
  string_size ← reading (fun _ => lit_get_magic_string_size T id);
  '(header_p, dest) ← ecma_stringbuilder_grow header_p string_size;
  string_data ← reading (fun _ => lit_get_magic_string_utf8 T id);
  bytes ← reading (fun _ => bytes_at string_data string_size);
  _ ← store_at header_p dest bytes;
  mret header_p.

Definition ecma_stringbuilder_append_codepoint (header_p cp : Z) : W content Z :=
  '(header_p, dest) ← ecma_stringbuilder_grow header_p (lit_code_point_get_cesu8_length cp);
  _ ← store_at header_p dest (lit_code_point_to_cesu8_bytes cp);
  mret header_p.

Definition ecma_stringbuilder_append_char (header_p c : Z) : W content Z := ecma_stringbuilder_append_codepoint header_p c.

Definition ecma_stringbuilder_append_byte (header_p byte : Z) : W content Z :=
  '(header_p, dest) ← ecma_stringbuilder_grow header_p 1;
  _ ← store_at header_p dest [byte];
  mret header_p.

Definition ecma_stringbuilder_destroy (header_p : Z) : W content unit :=
  '(size, _) ← read_builder header_p;
  jmem_heap_free_block header_p size.

(** The builder becomes the string; realloc and memmove make room for a larger
    header *)
Definition ecma_stringbuilder_finalize (header_p : Z) : W content Z :=
  '(current_size, buffer) ← read_builder header_p;
  let string_size := ECMA_STRINGBUILDER_STRING_SIZE current_size in
  string_begin ← reading (fun _ => bytes_at buffer string_size);
  special ← ecma_find_special_string T string_begin;
  match special with
  | Some string_p => _ ← ecma_stringbuilder_destroy header_p; mret string_p
  | None =>
      let hash := lit_utf8_string_calc_hash string_begin in
      length ← reading (fun _ => lit_utf8_string_length string_begin);
      if (string_size <=? 65535) && (length =? string_size) && (string_size <=? 256) then
        _ ← write_string header_p (mk_string (Z.lor ECMA_STRING_CONTAINER_HEAP_ASCII_STRING ECMA_STRING_REF_ONE) hash (ASCII (ECMA_ASCII_STRING_SET_SIZE string_size) string_begin));
        mret header_p
      else
        let container_size := if string_size <=? 65535 then sizeof_ecma_short_string_t else sizeof_ecma_long_string_t in
        header_p ← jmem_heap_realloc_block header_p current_size (string_size + container_size);
        '(_, buffer) ← read_builder header_p;
        chars ← reading (fun _ => bytes_at buffer string_size);
        if string_size <=? 65535 then
          _ ← write_string header_p (mk_string (Z.lor ECMA_STRING_CONTAINER_HEAP_UTF8_STRING ECMA_STRING_REF_ONE) hash (SHORT (u16 string_size) (u16 length) chars));
          mret header_p
        else
          _ ← write_string header_p (mk_string (Z.lor ECMA_STRING_CONTAINER_LONG_OR_EXTERNAL_STRING ECMA_STRING_REF_ONE) hash (LONG string_size length chars));
          mret header_p
  end.
End Operations.

(** ** Theory *)

Section Theory.
Context {BH : BlockHeap} (T : magic_tables) (HT : tables_ok T) (HD : tables_direct T).

(** The program holds a builder with the bytes [buf], besides what it held before *)
Definition builder (n : Z) (buf : list Z) : Z * option content := (n, Some (BLOCK_BUILDER n buf)).
Definition building (held : Z -> Z) (w : world content) (p : Z) (buf : list Z) : Prop :=
  good (take p held) w /\ blocks w !! p = Some (builder (ECMA_ASCII_STRING_HEADER_SIZE + zlength buf) buf) /\ held p = 0.

Lemma building_owns held w p buf : building held w p buf -> owns w.
Proof. intros [[Ho _] _]. exact Ho. Qed.

Lemma no_reference n buf q : refers q (snd (builder n buf)) = 0.
Proof. unfold refers, builder, child. cbn. now rewrite bool_decide_eq_false_2. Qed.

(** Without the builder *)
Lemma building_delete held w p buf : building held w p buf -> counted held (delete p (blocks w)) /\ keeps (fun q => 0 < held q) (blocks w) (delete p (blocks w)).
Proof.
  intros ([Ho Hc] & Hp & H0). split; [| apply keeps_delete; lia].
  destruct (counted_block _ _ Hc p _ _ Hp) as (c & E & _ & Hg & _). injection E as <-. destruct Hg as (_ & _ & Hk). rewrite take_eq, H0 in Hk.
  apply (counted_delete (take p held) held (blocks w) p _ _ Hc Hp); [rewrite take_eq; lia | lia |]. intros q. pose proof (no_reference (ECMA_ASCII_STRING_HEADER_SIZE + zlength buf) buf q) as Hr. cbn [snd builder] in Hr. rewrite Hr. unfold take. lia.
Qed.

Lemma builder_new held m w p buf : counted held m -> is_block p -> m !! p = None -> owns w ->
  blocks w = <[p := builder (ECMA_ASCII_STRING_HEADER_SIZE + zlength buf) buf]> m -> building held w p buf /\ keeps (fun q => 0 < held q) m (blocks w).
Proof.
  intros Hc Hb Hnew Ho E. pose proof (counted_held _ _ Hc p) as H0. pose proof (inner_nonneg p m) as Hi.
  assert (Hzero : held p = 0). { destruct (Z.eq_dec (held p) 0) as [| Hne]; [assumption |]. destruct (counted_live _ _ Hc p ltac:(lia)). congruence. }
  split; [| rewrite E; now apply keeps_fresh]. split; [| split; [rewrite E; apply lookup_insert_eq | exact Hzero]]. split; [exact Ho |]. rewrite E.
  apply (counted_insert held); try assumption.
  - now splits.
  - intros v Hv. discriminate.
  - unfold child. discriminate.
  - intros q. pose proof (no_reference (ECMA_ASCII_STRING_HEADER_SIZE + zlength buf) buf q) as Hr. cbn [snd builder] in Hr. rewrite Hr. unfold take. lia.
  - intros q. unfold take. pose proof (counted_held _ _ Hc q). case_bool_decide; lia.
Qed.

(** Other bytes *)
Lemma builder_again held w w' p buf buf' : building held w p buf -> zlength buf' = zlength buf -> owns w' ->
  blocks w' = <[p := builder (ECMA_ASCII_STRING_HEADER_SIZE + zlength buf') buf']> (blocks w) -> building held w' p buf' /\ keeps (fun q => 0 < held q) (blocks w) (blocks w').
Proof.
  intros Hw Hl Ho E. pose proof Hw as ([_ Hc] & Hp & _). destruct (building_delete held w p buf Hw) as [Hd Hk]. destruct (counted_block _ _ Hc p _ _ Hp) as (c & _ & Hb & _).
  destruct (builder_new held (delete p (blocks w)) w' p buf' Hd Hb) as [H1 H2]; [apply lookup_delete_eq | exact Ho | now rewrite insert_delete_eq |].
  split; [exact H1 | eapply kept_trans; eassumption].
Qed.

Lemma runs_read_builder w p n buf (Q : Z * list Z -> world content -> Prop) : blocks w !! p = Some (builder n buf) -> Q (n, buf) w -> runs (read_builder p) w Q.
Proof. intros Hp HQ. eapply runs_reading; [| exact HQ]. unfold builder_in, block_at. now rewrite Hp. Qed.

Lemma create_spec held w : good held w -> runs ecma_stringbuilder_create w (fun p w' => building held w' p [] /\ keeps (fun q => 0 < held q) (blocks w) (blocks w')).
Proof.
  intros [Ho Hc]. unfold ecma_stringbuilder_create. apply (runs_new ECMA_ASCII_STRING_HEADER_SIZE (fun _ => BLOCK_BUILDER ECMA_ASCII_STRING_HEADER_SIZE [])); [exact Ho | reflexivity | intros _; reflexivity || (now vm_compute) |].
  intros p w' Hb Hnew Ho' Hb' _. apply runs_ret. now apply (builder_new held (blocks w)).
Qed.

(** A builder of another size at another place *)
Lemma realloc_spec held w p buf n (Q : Z -> world content -> Prop) : building held w p buf -> ECMA_ASCII_STRING_HEADER_SIZE <= n ->
  (forall q w', is_block q -> delete p (blocks w) !! q = None -> owns w' ->
    blocks w' = <[q := (n, Some (BLOCK_BUILDER (ECMA_ASCII_STRING_HEADER_SIZE + zlength buf) (firstn (Z.to_nat (n - ECMA_ASCII_STRING_HEADER_SIZE)) buf)))]> (delete p (blocks w)) ->
    notes w' = notes w -> Q q w') ->
  runs (jmem_heap_realloc_block p (ECMA_ASCII_STRING_HEADER_SIZE + zlength buf) n) w Q.
Proof.
  intros Hw Hn HQ. pose proof Hw as (_ & Hp & _). unfold ECMA_ASCII_STRING_HEADER_SIZE, sizeof_ecma_string_t in Hn. pose proof (zlength_nonneg buf) as Hnn.
  eapply runs_realloc; [exact (building_owns _ _ _ _ Hw) | exact Hp | lia |]. intros q h w' Ho Hnew H8 H0 Hend. apply HQ; try assumption; [eapply (new_block q n); [lia | assumption ..] | | reflexivity].
  subst w'. cbn [blocks builder]. cbn [fmap option_fmap option_map shrink string_content]. do 4 f_equal.
  destruct (Z.le_gt_cases n (ECMA_ASCII_STRING_HEADER_SIZE + zlength buf)) as [Hle | Hgt]; [now rewrite Z.min_r by assumption |]. rewrite Z.min_l by lia.
  rewrite !firstn_all2 by (unfold zlength in *; lia). reflexivity.
Qed.

Lemma room_all buf k : 0 <= k -> with_room (ECMA_ASCII_STRING_HEADER_SIZE + zlength buf + k) buf = buf ++ repeat 0 (Z.to_nat k)
  /\ zlength (buf ++ repeat 0 (Z.to_nat k)) = zlength buf + k.
Proof.
  intros Hk. unfold with_room. split; [do 2 f_equal; lia |]. rewrite zlength_app. unfold zlength at 2. rewrite repeat_length. lia.
Qed.

Lemma grow_spec held w p buf k : building held w p buf -> 0 <= k -> ECMA_ASCII_STRING_HEADER_SIZE + zlength buf + k < B32 ->
  runs (ecma_stringbuilder_grow p k) w (fun '(q, dest) w' => building held w' q (buf ++ repeat 0 (Z.to_nat k)) /\ dest = zlength buf /\ keeps (fun q => 0 < held q) (blocks w) (blocks w')).
Proof.
  intros Hw Hk Hfit. pose proof Hw as (_ & Hp & _). pose proof (zlength_nonneg buf) as Hnn. destruct (building_delete held w p buf Hw) as [Hd Hkeep].
  unfold ecma_stringbuilder_grow. apply runs_bind. eapply runs_read_builder; [exact Hp |]. cbv beta iota zeta.
  rewrite u32_small by (unfold is_u32, ECMA_ASCII_STRING_HEADER_SIZE, sizeof_ecma_string_t in *; lia). apply runs_bind. apply (realloc_spec held w p buf); [exact Hw | lia |].
  intros q w1 Hb Hnew Ho1 Hb1 _. rewrite firstn_all2 in Hb1 by (unfold zlength in *; lia).
  apply runs_bind. eapply runs_reading; [unfold builder_in, block_at; rewrite Hb1, lookup_insert_eq; reflexivity |]. cbv beta iota.
  destruct (room_all buf k Hk) as [-> Hl]. apply runs_bind. eapply runs_write; [exact Ho1 | rewrite Hb1; apply lookup_insert_eq | apply Z.leb_le; cbn [content_size]; rewrite Hl; lia |].
  intros w2 Ho2. apply runs_ret. destruct (builder_new held (delete p (blocks w)) w2 q (buf ++ repeat 0 (Z.to_nat k)) Hd Hb Hnew Ho2) as [H1 H2].
  - subst w2. cbn [blocks]. rewrite Hb1, insert_insert_eq, Hl. unfold builder. now rewrite Z.add_assoc.
  - split; [exact H1 |]. split; [unfold ECMA_ASCII_STRING_HEADER_SIZE; lia | eapply kept_trans; eassumption].
Qed.

Lemma store_spec held w p a b c bytes : building held w p (a ++ b ++ c) -> zlength bytes = zlength b ->
  runs (store_at p (zlength a) bytes) w (fun _ w' => building held w' p (a ++ bytes ++ c) /\ keeps (fun q => 0 < held q) (blocks w) (blocks w')).
Proof.
  intros Hw Hl. pose proof Hw as (_ & Hp & _). pose proof (zlength_nonneg a). pose proof (zlength_nonneg b). pose proof (zlength_nonneg c).
  unfold store_at. apply runs_bind. eapply runs_read_builder; [exact Hp |]. cbv beta iota. rewrite !zlength_app.
  destruct (Z.leb_spec 0 (zlength a)); [| lia]. destruct (Z.leb_spec (zlength a + zlength bytes) (zlength a + (zlength b + zlength c))); [cbn [andb] | lia].
  rewrite first_app. assert (Hskip : skipn (Z.to_nat (zlength a + zlength bytes)) (a ++ b ++ c) = c).
  { rewrite app_assoc, Hl, <- zlength_app. apply advance_app. }
  rewrite Hskip. assert (Hsame : zlength (a ++ bytes ++ c) = zlength (a ++ b ++ c)) by (rewrite !zlength_app; lia).
  eapply runs_write; [exact (building_owns _ _ _ _ Hw) | exact Hp | apply Z.leb_le; cbn [content_size]; rewrite Hsame; lia |].
  intros w' Ho'. subst w'. apply (builder_again held w _ p (a ++ b ++ c)); [exact Hw | exact Hsame | exact Ho' |]. cbn [blocks]. now rewrite Hsame, !zlength_app.
Qed.

(** ** Appending *)

Definition fits_32 (size : Z) : Prop := ECMA_ASCII_STRING_HEADER_SIZE + size < B32.

Definition appends (held : Z -> Z) (w : world content) (buf bytes : list Z) (q : Z) (w' : world content) : Prop :=
  building held w' q (buf ++ bytes) /\ keeps (fun q => 0 < held q) (blocks w) (blocks w').

(** Every append grows the block and stores behind the bytes that are there *)
Lemma grow_then {A} held w p buf size (f : Z -> Z -> W content A) (Q : A -> world content -> Prop) : building held w p buf -> 0 <= size -> fits_32 (zlength buf + size) ->
  (forall q w1, building held w1 q (buf ++ repeat 0 (Z.to_nat size)) -> keeps (fun q => 0 < held q) (blocks w) (blocks w1) -> runs (f q (zlength buf)) w1 Q) ->
  runs ('(header_p, dest) ← ecma_stringbuilder_grow p size; f header_p dest) w Q.
Proof.
  intros Hw Hsize Hfit HQ. unfold fits_32 in Hfit. apply runs_bind. eapply runs_mono; [apply (grow_spec held w p buf size Hw Hsize); lia |].
  intros [q dest] w1 (H1 & -> & Hk1). now apply HQ.
Qed.

Lemma store_end held w w1 q buf bytes : building held w1 q (buf ++ repeat 0 (Z.to_nat (zlength bytes))) -> keeps (fun q => 0 < held q) (blocks w) (blocks w1) ->
  runs (_ ← store_at q (zlength buf) bytes; mret q) w1 (appends held w buf bytes).
Proof.
  intros H1 Hk1. apply runs_bind. assert (Hroom : zlength (repeat 0 (Z.to_nat (zlength bytes))) = zlength bytes) by (unfold zlength; rewrite repeat_length; lia).
  eapply runs_mono; [apply (store_spec held w1 q buf (repeat 0 (Z.to_nat (zlength bytes))) [] bytes); [now rewrite app_nil_r | now rewrite Hroom] |].
  intros u w3 [H3 Hk3]. apply runs_ret. rewrite app_nil_r in H3. split; [exact H3 | eapply kept_trans; eassumption].
Qed.

Lemma append_raw_spec held w p buf bytes : building held w p buf -> fits_32 (zlength buf + zlength bytes) ->
  runs (ecma_stringbuilder_append_raw p bytes) w (appends held w buf bytes).
Proof. intros Hw Hfit. apply (grow_then held w p buf); [exact Hw | apply zlength_nonneg | exact Hfit |]. intros q w1. apply store_end. Qed.

Lemma append_byte_spec held w p buf byte : building held w p buf -> fits_32 (zlength buf + 1) ->
  runs (ecma_stringbuilder_append_byte p byte) w (appends held w buf [byte]).
Proof. exact (append_raw_spec held w p buf [byte]). Qed.

Lemma length_of_bytes cp : lit_code_point_get_cesu8_length cp = zlength (lit_code_point_to_cesu8_bytes cp).
Proof. unfold lit_code_point_get_cesu8_length, lit_code_point_to_cesu8_bytes. now destruct (cp <? 128), (cp <? 2048), (cp <? 65536). Qed.

Lemma append_codepoint_spec held w p buf cp : building held w p buf -> is_code_point cp -> fits_32 (zlength buf + zlength (lit_code_point_to_cesu8 cp)) ->
  runs (ecma_stringbuilder_append_codepoint p cp) w (appends held w buf (lit_code_point_to_cesu8 cp)).
Proof.
  intros Hw Hcp Hfit. rewrite <- cesu8_bytes_eq in * by exact Hcp. unfold ecma_stringbuilder_append_codepoint. rewrite length_of_bytes. now apply append_raw_spec.
Qed.

Lemma append_magic_spec held w p buf id chars : building held w p buf -> lit_get_magic_string_utf8 T id = Some chars -> fits_32 (zlength buf + zlength chars) ->
  runs (ecma_stringbuilder_append_magic T p id) w (appends held w buf chars).
Proof.
  intros Hw Hid Hfit. unfold ecma_stringbuilder_append_magic. apply runs_bind. eapply runs_reading; [unfold lit_get_magic_string_size; rewrite Hid; reflexivity |].
  apply (grow_then held w p buf); [exact Hw | apply zlength_nonneg | exact Hfit |]. intros q w1 H1 Hk1. apply runs_bind. eapply runs_reading; [exact Hid |].
  apply runs_bind. eapply runs_reading; [apply bytes_at_all |]. now apply store_end.
Qed.

(** A string that the program holds *)
Lemma append_string_spec held w p buf string_p s : building held w p buf -> string_is T (blocks w) string_p s -> holds_string held string_p -> fits_32 (zlength buf + zlength s) ->
  runs (ecma_stringbuilder_append T p string_p) w (appends held w buf s).
Proof.
  intros Hw Hs Hheld Hfit. pose proof (proj1 Hs) as (units & Hu & ->). unfold ecma_stringbuilder_append. apply runs_bind.
  eapply runs_reading; [exact (size_spec T HT HD (blocks w) string_p units Hu Hs) |]. apply (grow_then held w p buf); [exact Hw | apply zlength_nonneg | exact Hfit |].
  intros q w1 H1 Hk1. assert (Hs1 : string_is T (blocks w1) string_p (cesu8_encode units)) by (eapply keeps_string; [exact Hk1 | exact Hheld | exact Hs]).
  apply runs_bind. eapply runs_reading; [exact (cesu8_bytes_spec T HT HD (blocks w1) string_p units Hu Hs1) |]. now apply store_end.
Qed.

(** ** Reading, cutting and releasing *)

Lemma builder_size_spec held w p buf : building held w p buf -> fits_32 (zlength buf) -> runs (ecma_stringbuilder_get_size p) w (fun size w' => size = zlength buf /\ w' = w).
Proof.
  intros (_ & Hp & _) Hfit. unfold ecma_stringbuilder_get_size. apply runs_bind. eapply runs_read_builder; [exact Hp |]. apply runs_ret. split; [| reflexivity].
  unfold ECMA_STRINGBUILDER_STRING_SIZE. rewrite Z.add_simpl_l. apply u32_small. unfold fits_32, ECMA_ASCII_STRING_HEADER_SIZE, sizeof_ecma_string_t in Hfit. pose proof (zlength_nonneg buf). unfold is_u32. lia.
Qed.

Lemma get_data_spec held w p buf : building held w p buf -> runs (ecma_stringbuilder_get_data p) w (fun data w' => data = buf /\ w' = w).
Proof. intros (_ & Hp & _). unfold ecma_stringbuilder_get_data. apply runs_bind. eapply runs_read_builder; [exact Hp |]. now apply runs_ret. Qed.

Lemma revert_spec held w p buf size : building held w p buf -> 0 <= size <= zlength buf -> fits_32 (zlength buf) ->
  runs (ecma_stringbuilder_revert p size) w (fun q w' => building held w' q (firstn (Z.to_nat size) buf) /\ keeps (fun q => 0 < held q) (blocks w) (blocks w')).
Proof.
  intros Hw Hsize Hfit. pose proof Hw as (_ & Hp & _). destruct (building_delete held w p buf Hw) as [Hd Hkeep]. unfold fits_32, ECMA_ASCII_STRING_HEADER_SIZE, sizeof_ecma_string_t in Hfit.
  unfold ecma_stringbuilder_revert. apply runs_bind. eapply runs_read_builder; [exact Hp |]. cbv beta iota zeta.
  rewrite u32_small by (unfold is_u32, ECMA_ASCII_STRING_HEADER_SIZE, sizeof_ecma_string_t; lia). apply runs_bind. apply (realloc_spec held w p buf); [exact Hw | lia |].
  intros q w1 Hb Hnew Ho1 Hb1 _. replace (size + ECMA_ASCII_STRING_HEADER_SIZE - ECMA_ASCII_STRING_HEADER_SIZE) with size in Hb1 by lia.
  assert (Hl : zlength (firstn (Z.to_nat size) buf) = size) by (unfold zlength in *; rewrite length_firstn; lia).
  apply runs_bind. eapply runs_reading; [unfold builder_in, block_at; rewrite Hb1, lookup_insert_eq; reflexivity |]. cbv beta iota.
  apply runs_bind. eapply runs_write; [exact Ho1 | rewrite Hb1; apply lookup_insert_eq | apply Z.leb_le; cbn [content_size]; rewrite Hl; lia |].
  intros w2 Ho2. apply runs_ret. destruct (builder_new held (delete p (blocks w)) w2 q (firstn (Z.to_nat size) buf) Hd Hb Hnew Ho2) as [H1 H2].
  - subst w2. cbn [blocks]. rewrite Hb1, insert_insert_eq, Hl. unfold builder. now rewrite Z.add_comm.
  - split; [exact H1 | eapply kept_trans; eassumption].
Qed.

Lemma builder_destroy_spec held w p buf : building held w p buf ->
  runs (ecma_stringbuilder_destroy p) w (fun _ w' => good held w' /\ keeps (fun q => 0 < held q) (blocks w) (blocks w')).
Proof.
  intros Hw. pose proof Hw as (_ & Hp & _). destruct (building_delete held w p buf Hw) as [Hd Hkeep]. unfold ecma_stringbuilder_destroy. apply runs_bind.
  eapply runs_read_builder; [exact Hp |]. cbv beta iota. eapply runs_free; [exact (building_owns _ _ _ _ Hw) | exact Hp |]. intros h w' Ho'. split; [split; [exact Ho' | exact Hd] | exact Hkeep].
Qed.
(** ** Finalizing *)

(** A string that was found beside the builder *)
Lemma found_beside held w w1 p buf r : building held w p buf -> made T (take p held) (blocks w) buf r w1 ->
  building (own_string r held) w1 p buf /\ string_is T (blocks w1) r buf /\ keeps (fun q => 0 < held q) (blocks w) (blocks w1).
Proof.
  intros (_ & Hp & H0) (Hs & Hgood & Hk).
  assert (Hp1 : blocks w1 !! p = Some (builder (ECMA_ASCII_STRING_HEADER_SIZE + zlength buf) buf)).
  { destruct (Hk p _ _ ltac:(cbv beta; rewrite take_eq; lia) Hp) as (c' & Hp' & E). rewrite Hp'. unfold builder. destruct c' as [y | | | | |]; cbn in E; try discriminate. injection E as -> ->. reflexivity. }
  assert (Hne : ECMA_IS_DIRECT_STRING r = false -> r <> p).
  { intros Hd ->. destruct (string_block T HT HD (blocks w1) p buf Hs Hd) as (n & x & Hx & _). rewrite Hp1 in Hx. discriminate. }
  assert (Eown : forall q, own_string r (take p held) q = take p (own_string r held) q) by (intros q; unfold own_string, take; destruct (ECMA_IS_DIRECT_STRING r); lia).
  split; [| split; [exact Hs |]].
  - split; [eapply good_ext; [exact Eown | exact Hgood] |]. split; [exact Hp1 |]. unfold own_string. destruct (ECMA_IS_DIRECT_STRING r) eqn:Hd; [exact H0 |].
    rewrite take_ne by (intros ->; now apply Hne). exact H0.
  - eapply keeps_mono; [| exact Hk]. cbv beta. intros q Hq. unfold take. case_bool_decide; lia.
Qed.

(** The string that replaces the block of the builder *)
Lemma builder_string held w w' p q buf length n refs d : building held w p buf -> is_block q -> delete p (blocks w) !! q = None -> owns w' ->
  is_text buf -> buf <> [] -> zlength buf < B32 - 1 -> lit_utf8_string_length buf = Some length -> layout length (zlength buf) = (n, refs, d) -> special T buf = None ->
  blocks w' = <[q := (n, Some (BLOCK_STRING (mk_string refs (lit_utf8_string_calc_hash buf) (d buf))))]> (delete p (blocks w)) -> made T held (blocks w) buf q w'.
Proof.
  intros Hw Hb Hnew Ho Htext Hne Hsize Hlen Hlay Hs E. destruct (building_delete held w p buf Hw) as [Hd Hk]. eapply made_after; [exact Hk |]. eapply (made_block T); eassumption.
Qed.

Lemma finalize_spec held w p buf : building held w p buf -> is_text buf -> fits_32 (zlength buf) -> runs (ecma_stringbuilder_finalize T p) w (made T held (blocks w) buf).
Proof.
  intros Hw Htext Hfit. pose proof Hw as (Hgood & Hp & H0). pose proof (zlength_nonneg buf) as Hnn. unfold fits_32, ECMA_ASCII_STRING_HEADER_SIZE, sizeof_ecma_string_t in Hfit.
  assert (Hsize : ECMA_STRINGBUILDER_STRING_SIZE (ECMA_ASCII_STRING_HEADER_SIZE + zlength buf) = zlength buf).
  { unfold ECMA_STRINGBUILDER_STRING_SIZE. rewrite Z.add_simpl_l. apply u32_small. unfold is_u32. lia. }
  unfold ecma_stringbuilder_finalize. apply runs_bind. eapply runs_read_builder; [exact Hp |]. cbv beta iota zeta. rewrite Hsize.
  apply runs_bind. eapply runs_reading; [apply bytes_at_all |]. apply runs_bind. eapply runs_mono; [apply (find_special_spec T HT HD (take p held) w buf Hgood Htext); lia |].
  intros [r |] w1 Hr.
  { destruct (found_beside held w w1 p buf r Hw Hr) as (Hw1 & Hs & Hk). apply runs_bind. eapply runs_mono; [exact (builder_destroy_spec _ _ _ _ Hw1) |].
    intros u w2 [Hgood2 Hk2]. apply runs_ret. split; [| split; [exact Hgood2 |]].
    - eapply keeps_string; [exact Hk2 | | exact Hs]. cbv beta. intros Hd. unfold own_string. rewrite Hd, take_eq. pose proof (counted_held _ _ (proj2 Hgood) r) as Hr0. unfold take in Hr0.
      destruct (decide (r = p)) as [-> | Hrp]; [lia |]. rewrite bool_decide_eq_false_2 in Hr0 by exact Hrp. lia.
    - eapply kept_trans; [exact Hk |]. eapply keeps_mono; [| exact Hk2]. cbv beta. intros q Hq. pose proof (own_ge r held q). lia. }
  destruct Hr as (Hspecial & Hne & ->). destruct Htext as (units & Hu & E). assert (Hlen : lit_utf8_string_length buf = Some (zlength units)) by (rewrite E; now apply text_length).
  assert (Htext : is_text buf) by now exists units.
  apply runs_bind. eapply runs_reading; [exact Hlen |]. pose proof (building_owns _ _ _ _ Hw) as Ho. destruct (counted_block _ _ (proj2 Hgood) p _ _ Hp) as (c & _ & Hblock & _).
  assert (Hlayout : layout (zlength units) (zlength buf) = if zlength buf <=? 65535 then
    if (zlength units =? zlength buf) && (zlength buf <=? 256) then (zlength buf + 9, 19, ASCII (u8 (zlength buf - 1))) else (zlength buf + 12, 16, SHORT (u16 (zlength buf)) (u16 (zlength units)))
    else (zlength buf + 24, 17, LONG (zlength buf) (zlength units))) by reflexivity.
  rewrite <- andb_assoc. destruct (zlength buf <=? 65535) eqn:Eshort; cbn [andb]; [destruct ((zlength units =? zlength buf) && (zlength buf <=? 256)) eqn:Ea |].
  - (* the header is filled in *)
    unfold write_string. apply runs_bind. eapply runs_write; [exact Ho | exact Hp | apply Z.leb_le; cbn [content_size data data_size]; lia |]. intros w2 Ho2. apply runs_ret.
    eapply (builder_string held w w2 p p); try eassumption; [apply lookup_delete_eq | lia |]. subst w2. cbn [blocks]. rewrite insert_delete_eq. now rewrite Z.add_comm.
  - apply runs_bind. apply (realloc_spec held w p buf); [exact Hw | unfold ECMA_ASCII_STRING_HEADER_SIZE, sizeof_ecma_string_t, sizeof_ecma_short_string_t; lia |].
    intros q w2 Hb Hnew Ho2 Hb2 _. rewrite firstn_all2 in Hb2 by (unfold ECMA_ASCII_STRING_HEADER_SIZE, sizeof_ecma_string_t, sizeof_ecma_short_string_t, zlength; lia).
    apply runs_bind. eapply runs_reading; [unfold builder_in, block_at; rewrite Hb2, lookup_insert_eq; reflexivity |]. cbv beta iota. apply runs_bind. eapply runs_reading; [apply bytes_at_all |].
    unfold write_string. apply runs_bind. eapply runs_write; [exact Ho2 | rewrite Hb2; apply lookup_insert_eq | apply Z.leb_le; cbn [content_size data data_size]; unfold sizeof_ecma_short_string_t; lia |].
    intros w3 Ho3. apply runs_ret. eapply (builder_string held w w3 p q); try eassumption; [lia |]. subst w3. cbn [blocks]. now rewrite Hb2, insert_insert_eq.
  - apply runs_bind. apply (realloc_spec held w p buf); [exact Hw | unfold ECMA_ASCII_STRING_HEADER_SIZE, sizeof_ecma_string_t, sizeof_ecma_long_string_t; lia |].
    intros q w2 Hb Hnew Ho2 Hb2 _. rewrite firstn_all2 in Hb2 by (unfold ECMA_ASCII_STRING_HEADER_SIZE, sizeof_ecma_string_t, sizeof_ecma_long_string_t, zlength; lia).
    apply runs_bind. eapply runs_reading; [unfold builder_in, block_at; rewrite Hb2, lookup_insert_eq; reflexivity |]. cbv beta iota. apply runs_bind. eapply runs_reading; [apply bytes_at_all |].
    unfold write_string. apply runs_bind. eapply runs_write; [exact Ho2 | rewrite Hb2; apply lookup_insert_eq | apply Z.leb_le; cbn [content_size data data_size]; unfold sizeof_ecma_long_string_t; lia |].
    intros w3 Ho3. apply runs_ret. eapply (builder_string held w w3 p q); try eassumption; [lia |]. subst w3. cbn [blocks]. now rewrite Hb2, insert_insert_eq.
Qed.
End Theory.

(** ** Builders from strings *)

Section Create.
Context {BH : BlockHeap} (T : magic_tables) (HT : tables_ok T) (HD : tables_direct T).

(** Held strings with their texts *)
Definition held_texts (held : Z -> Z) (m : memory) (strings : list (Z * Z)) (texts : list (list Z)) : Prop :=
  Forall2 (fun s text => string_is T m (fst s) text /\ holds_string held (fst s) /\ snd s = zlength text) strings texts.

Lemma texts_keep held m m' strings texts : keeps (fun q => 0 < held q) m m' -> held_texts held m strings texts -> held_texts held m' strings texts.
Proof. intros Hk H. eapply Forall2_impl; [exact H |]. intros s text (Hs & Hh & Hl). splits; try assumption. eapply keeps_string; [exact Hk | exact Hh | exact Hs]. Qed.

Lemma store_strings_spec held strings : forall texts w p a, held_texts held (blocks w) strings texts ->
  building held w p (a ++ repeat 0 (Z.to_nat (zlength (concat texts)))) ->
  runs (store_strings T p (zlength a) strings) w (fun _ w' => building held w' p (a ++ concat texts) /\ keeps (fun q => 0 < held q) (blocks w) (blocks w')).
Proof.
  induction strings as [| [string_p size] strings IH]; intros texts w p a Htexts Hw; inversion Htexts as [| ? text ? texts' (Hs & Hh & Hl) Htexts']; subst; cbn [store_strings concat] in *.
  - apply runs_ret. split; [exact Hw | apply keeps_refl].
  - cbn [fst snd] in *. subst size. pose proof (proj1 Hs) as (units & Hu & E). rewrite zlength_app in Hw. pose proof (zlength_nonneg text). pose proof (zlength_nonneg (concat texts')).
    rewrite Z2Nat.inj_add, repeat_app in Hw by lia. apply runs_bind. eapply runs_reading; [rewrite E in *; exact (cesu8_bytes_spec T HT HD (blocks w) string_p units Hu Hs) |].
    rewrite <- E. apply runs_bind. eapply runs_mono; [apply (store_spec held w p a _ _ text Hw); unfold zlength; rewrite repeat_length; lia |].
    intros u w1 [H1 Hk1]. rewrite app_assoc in H1. rewrite <- zlength_app. eapply runs_mono; [apply (IH texts' w1 p (a ++ text)); [eapply texts_keep; [exact Hk1 | exact Htexts'] | exact H1] |].
    intros u' w2 [H2 Hk2]. rewrite app_assoc. split; [exact H2 | eapply kept_trans; eassumption].
Qed.

Lemma sum_of_sizes held m strings : forall texts start, held_texts held m strings texts -> 0 <= start -> start + zlength (concat texts) < B32 ->
  fold_left (fun initial_size s => u32 (initial_size + snd s)) strings start = start + zlength (concat texts).
Proof.
  induction strings as [| s strings IH]; intros texts start Htexts H0 Hfit; inversion Htexts as [| ? text ? texts' (_ & _ & Hl) Htexts']; subst; cbn [fold_left concat] in *.
  - rewrite (@zlength_nil Z). lia.
  - rewrite zlength_app in *. pose proof (zlength_nonneg text). pose proof (zlength_nonneg (concat texts')). rewrite Hl, u32_small by (unfold is_u32; lia). rewrite (IH texts') by (assumption || lia). lia.
Qed.

(** A new builder with room *)
Lemma room_spec {A} held w k (f : Z -> W content A) (Q : A -> world content -> Prop) : good held w -> 0 <= k ->
  (forall p w1, building held w1 p (repeat 0 (Z.to_nat k)) -> keeps (fun q => 0 < held q) (blocks w) (blocks w1) -> runs (f p) w1 Q) ->
  runs (header_p ← jmem_heap_alloc_block (ECMA_ASCII_STRING_HEADER_SIZE + k);
        _ ← write_block header_p (BLOCK_BUILDER (ECMA_ASCII_STRING_HEADER_SIZE + k) (with_room (ECMA_ASCII_STRING_HEADER_SIZE + k) [])); f header_p) w Q.
Proof.
  intros [Ho Hc] Hk HQ. assert (Eroom : with_room (ECMA_ASCII_STRING_HEADER_SIZE + k) [] = repeat 0 (Z.to_nat k)) by (unfold with_room; cbn [app]; do 2 f_equal; rewrite (@zlength_nil Z); lia).
  assert (Hl : zlength (repeat 0 (Z.to_nat k)) = k) by (unfold zlength; rewrite repeat_length; lia). rewrite Eroom.
  apply (runs_new (ECMA_ASCII_STRING_HEADER_SIZE + k) (fun _ => BLOCK_BUILDER (ECMA_ASCII_STRING_HEADER_SIZE + k) (repeat 0 (Z.to_nat k))));
    [exact Ho | unfold ECMA_ASCII_STRING_HEADER_SIZE, sizeof_ecma_string_t; lia | intros _; cbn [content_size]; rewrite Hl; lia |].
  intros p w' Hb Hnew Ho' Hb' _. destruct (builder_new held (blocks w) w' p (repeat 0 (Z.to_nat k)) Hc Hb Hnew Ho') as [H1 H2]; [now rewrite Hl |]. now apply HQ.
Qed.

Lemma create_array_spec held w strings texts : good held w -> held_texts held (blocks w) strings texts -> fits_32 (zlength (concat texts)) ->
  runs (ecma_stringbuilder_create_from_array T strings) w (fun p w' => building held w' p (concat texts) /\ keeps (fun q => 0 < held q) (blocks w) (blocks w')).
Proof.
  intros Hgood Htexts Hfit. unfold ecma_stringbuilder_create_from_array. cbv zeta.
  rewrite (sum_of_sizes held (blocks w) strings texts) by (assumption || exact Hfit || (unfold ECMA_ASCII_STRING_HEADER_SIZE, sizeof_ecma_string_t; lia)).
  apply (room_spec held w); [exact Hgood | apply zlength_nonneg |]. intros p w1 H1 Hk1. apply runs_bind.
  eapply runs_mono; [exact (store_strings_spec held strings texts w1 p [] ltac:(eapply texts_keep; eassumption) H1) |].
  intros u w2 [H2 Hk2]. apply runs_ret. split; [exact H2 | eapply kept_trans; eassumption].
Qed.

Lemma create_from_spec held w string_p s : good held w -> string_is T (blocks w) string_p s -> holds_string held string_p -> fits_32 (zlength s) ->
  runs (ecma_stringbuilder_create_from T string_p) w (fun p w' => building held w' p s /\ keeps (fun q => 0 < held q) (blocks w) (blocks w')).
Proof.
  intros Hgood Hs Hh Hfit. pose proof (proj1 Hs) as (units & Hu & E). unfold ecma_stringbuilder_create_from. apply runs_bind.
  eapply runs_reading; [rewrite E in Hs; exact (size_spec T HT HD (blocks w) string_p units Hu Hs) |]. rewrite <- E.
  pose proof (create_array_spec held w [(string_p, zlength s)] [s] Hgood) as H. cbn [concat] in H. rewrite app_nil_r in H. apply H; [| exact Hfit].
  constructor; [now splits | constructor].
Qed.

Lemma create_raw_spec held w data : good held w -> fits_32 (zlength data) ->
  runs (ecma_stringbuilder_create_raw data) w (fun p w' => building held w' p data /\ keeps (fun q => 0 < held q) (blocks w) (blocks w')).
Proof.
  intros Hgood Hfit. pose proof (zlength_nonneg data) as Hnn. unfold ecma_stringbuilder_create_raw. cbv zeta.
  assert (Hsize : u32 (zlength data + ECMA_ASCII_STRING_HEADER_SIZE) = ECMA_ASCII_STRING_HEADER_SIZE + zlength data).
  { rewrite Z.add_comm. apply u32_small. unfold fits_32 in Hfit. unfold is_u32, ECMA_ASCII_STRING_HEADER_SIZE, sizeof_ecma_string_t in *. lia. }
  rewrite Hsize. apply (room_spec held w); [exact Hgood | exact Hnn |]. intros p w1 H1 Hk1. apply runs_bind.
  eapply runs_mono; [apply (store_spec held w1 p [] (repeat 0 (Z.to_nat (zlength data))) [] data); [now rewrite app_nil_r | unfold zlength; rewrite repeat_length; lia] |].
  intros u w2 [H2 Hk2]. apply runs_ret. rewrite app_nil_r in H2. split; [exact H2 | eapply kept_trans; eassumption].
Qed.

(** ** Builders as sequences *)

(** What is appended *)
Inductive part := RAW (data : list Z) | BYTE (byte : Z) | CODEPOINT (cp : Z) | CHAR (c : Z) | MAGIC_STRING (id : Z) | STRING (string_p : Z).

Definition append_part (header_p : Z) (x : part) : W content Z :=
  match x with
  | RAW data => ecma_stringbuilder_append_raw header_p data
  | BYTE byte => ecma_stringbuilder_append_byte header_p byte
  | CODEPOINT cp => ecma_stringbuilder_append_codepoint header_p cp
  | CHAR c => ecma_stringbuilder_append_char header_p c
  | MAGIC_STRING id => ecma_stringbuilder_append_magic T header_p id
  | STRING string_p => ecma_stringbuilder_append T header_p string_p
  end.

Fixpoint append_parts (header_p : Z) (parts : list part) : W content Z :=
  match parts with [] => mret header_p | x :: parts => header_p ← append_part header_p x; append_parts header_p parts end.

Definition build (parts : list part) : W content Z :=
  header_p ← ecma_stringbuilder_create;
  header_p ← append_parts header_p parts;
  ecma_stringbuilder_finalize T header_p.

(** What it stands for *)
Inductive part_is (held : Z -> Z) (m : memory) : part -> list Z -> Prop :=
| raw_is data : part_is held m (RAW data) data
| byte_is byte : part_is held m (BYTE byte) [byte]
| codepoint_is cp : is_code_point cp -> part_is held m (CODEPOINT cp) (lit_code_point_to_cesu8 cp)
| char_is c : is_u16 c -> part_is held m (CHAR c) (lit_code_unit_to_utf8 c)
| magic_is id chars : lit_get_magic_string_utf8 T id = Some chars -> part_is held m (MAGIC_STRING id) chars
| string_part string_p s : string_is T m string_p s -> holds_string held string_p -> part_is held m (STRING string_p) s.

Lemma part_keep held m m' x s : keeps (fun q => 0 < held q) m m' -> part_is held m x s -> part_is held m' x s.
Proof. intros Hk H. inversion H; subst; constructor; try assumption. eapply keeps_string; [exact Hk | assumption | assumption]. Qed.

Lemma append_part_spec held w p buf x s : building held w p buf -> part_is held (blocks w) x s -> fits_32 (zlength buf + zlength s) ->
  runs (append_part p x) w (appends held w buf s).
Proof.
  intros Hw Hx Hfit. destruct Hx as [data | byte | cp Hcp | c Hc | id chars Hid | string_p s Hs Hh]; cbn [append_part].
  - now apply append_raw_spec.
  - now apply append_byte_spec.
  - now apply append_codepoint_spec.
  - rewrite <- code_point_to_cesu8_unit in * by exact Hc. apply append_codepoint_spec; [exact Hw | unfold is_code_point, is_u16 in *; lia | exact Hfit].
  - now apply append_magic_spec.
  - now apply (append_string_spec T HT HD).
Qed.

Lemma append_parts_spec held parts : forall texts w p buf, building held w p buf -> Forall2 (part_is held (blocks w)) parts texts -> fits_32 (zlength (buf ++ concat texts)) ->
  runs (append_parts p parts) w (appends held w buf (concat texts)).
Proof.
  induction parts as [| x parts IH]; intros texts w p buf Hw Hparts Hfit; inversion Hparts as [| ? s ? texts' Hx Hparts']; subst; cbn [append_parts concat] in *.
  - apply runs_ret. split; [now rewrite app_nil_r | apply keeps_refl].
  - assert (Hfit1 : fits_32 (zlength buf + zlength s)) by (unfold fits_32 in *; rewrite !zlength_app in Hfit; pose proof (zlength_nonneg (concat texts')); lia).
    apply runs_bind. eapply runs_mono; [exact (append_part_spec held w p buf x s Hw Hx Hfit1) |]. intros q w1 [H1 Hk1].
    eapply runs_mono; [apply (IH texts' w1 q (buf ++ s) H1); [| now rewrite <- app_assoc] |].
    + eapply Forall2_impl; [exact Hparts' |]. intros y t. now apply part_keep.
    + intros r w2 [H2 Hk2]. rewrite <- app_assoc in H2. split; [exact H2 | eapply kept_trans; eassumption].
Qed.

Lemma build_spec held w parts texts : good held w -> Forall2 (part_is held (blocks w)) parts texts -> is_text (concat texts) -> fits_32 (zlength (concat texts)) ->
  runs (build parts) w (made T held (blocks w) (concat texts)).
Proof.
  intros Hgood Hparts Htext Hfit. unfold build. apply runs_bind. eapply runs_mono; [exact (create_spec held w Hgood) |]. intros p w1 [H1 Hk1].
  apply runs_bind. eapply runs_mono; [apply (append_parts_spec held parts texts w1 p [] H1); [| exact Hfit] |].
  { eapply Forall2_impl; [exact Hparts |]. intros y t. now apply part_keep. }
  intros q w2 [H2 Hk2]. eapply runs_mono; [apply (finalize_spec T HT HD held w2 q _ H2 Htext Hfit) |]. intros r w3 Hm.
  eapply made_after; [| exact Hm]. eapply kept_trans; eassumption.
Qed.
End Create.

(** ** Properties *)

(** C26: string builders implement concatenation: starting empty, from raw bytes or
    from held strings, appending strings, magic strings, code points, code units
    and bytes, cutting back and finalizing gives the string with the bytes that
    were collected, in its one representation; counters stay exact, no held string
    changes, and the block of the builder becomes the string or is released. *)
Theorem ecma_stringbuilder_correct {BH : BlockHeap} T held (w : world content) : tables_ok T -> tables_direct T -> good held w ->
  (forall parts texts, Forall2 (part_is T held (blocks w)) parts texts -> is_text (concat texts) -> fits_32 (zlength (concat texts)) ->
    runs (build T parts) w (made T held (blocks w) (concat texts)))
  /\ (forall strings texts, held_texts T held (blocks w) strings texts -> fits_32 (zlength (concat texts)) ->
    runs (ecma_stringbuilder_create_from_array T strings) w (fun p w' => building held w' p (concat texts) /\ keeps (fun q => 0 < held q) (blocks w) (blocks w')))
  /\ (forall data, fits_32 (zlength data) ->
    runs (ecma_stringbuilder_create_raw data) w (fun p w' => building held w' p data /\ keeps (fun q => 0 < held q) (blocks w) (blocks w')))
  /\ (forall others p buf, building others w p buf -> fits_32 (zlength buf) ->
    (is_text buf -> runs (ecma_stringbuilder_finalize T p) w (made T others (blocks w) buf))
    /\ runs (ecma_stringbuilder_destroy p) w (fun _ w' => good others w' /\ keeps (fun q => 0 < others q) (blocks w) (blocks w'))
    /\ runs (ecma_stringbuilder_get_size p) w (fun size w' => size = zlength buf /\ w' = w)
    /\ (forall size, 0 <= size <= zlength buf ->
        runs (ecma_stringbuilder_revert p size) w (fun q w' => building others w' q (firstn (Z.to_nat size) buf) /\ keeps (fun q => 0 < others q) (blocks w) (blocks w')))).
Proof.
  intros HT HD Hgood. splits.
  - intros parts texts. now apply (build_spec T HT HD).
  - intros strings texts. now apply (create_array_spec T HT HD).
  - intros data. now apply create_raw_spec.
  - intros others p buf Hw Hfit. splits.
    + intros Htext. now apply (finalize_spec T HT HD).
    + now apply (builder_destroy_spec others w p buf).
    + now apply (builder_size_spec others).
    + intros size Hsize. now apply (revert_spec others w p buf size).
Qed.

(** "ab", "!" and "ab" again *)
Lemma ecma_stringbuilder_witness :
  runs (build default_tables [STRING 0; CHAR 33; STRING 0]) string_world (made default_tables (take 0 (fun _ => 0)) (blocks string_world) [97; 98; 33; 97; 98])
  /\ match build default_tables [STRING 0; CHAR 33; STRING 0] string_world with
     | OK p w' => relational_chars default_tables (blocks w') p = Some [97; 98; 33; 97; 98] | _ => False end.
Proof.
  split; [| now vm_compute].
  apply (proj1 (ecma_stringbuilder_correct default_tables (take 0 (fun _ => 0)) string_world default_tables_ok default_direct string_world_good)
    [STRING 0; CHAR 33; STRING 0] [[97; 98]; lit_code_unit_to_utf8 33; [97; 98]]).
  - assert (Hs : part_is default_tables (take 0 (fun _ => 0)) (blocks string_world) (STRING 0) [97; 98]) by (apply string_part; [exact example_text | intros _; now vm_compute]).
    constructor; [exact Hs |]. constructor; [apply char_is; split; now vm_compute |]. constructor; [exact Hs | constructor].
  - apply text_ascii. repeat constructor; cbv; discriminate.
  - now vm_compute.
Defined.
