(* ===== verification/LineInfo.v ===== *)
(** * Line info of byte code

    src/jjs-core/ecma/base/ecma-line-info.c and the encoders of
    src/jjs-core/parser/js/js-parser-line-info-create.c: the variable length
    numbers, the differences between positions, and the search for the line and
    the column of a byte code offset.  A pointer into a buffer is the rest of the
    buffer, and a read behind the end of the buffer is [None]. *)
From Stdlib Require Import ZArith List Lia Bool.
From S2P Require Import Prelude.
Import ListNotations.
#[local] Open Scope Z_scope.
#[local] Open Scope word_scope.
#[local] Open Scope partial_scope.

(** ** Constants (ecma-line-info.h) *)

Definition ECMA_LINE_INFO_INCREASE : Z := 0.
Definition ECMA_LINE_INFO_DECREASE : Z := 1.
Definition ECMA_LINE_INFO_HAS_LINE : Z := 1.
Definition ECMA_LINE_INFO_COLUMN_DEFAULT : Z := 127.
Definition ECMA_LINE_INFO_VLQ_CONTINUE : Z := 128.
Definition ECMA_LINE_INFO_VLQ_MASK : Z := 127.
Definition ECMA_LINE_INFO_VLQ_SHIFT : Z := 7.
Definition ECMA_LINE_INFO_ENCODE_TWO_BYTE : Z := 255 - 1.
Definition ECMA_LINE_INFO_ENCODE_TWO_BYTE_MIN : Z := 255 - 1.
Definition ECMA_LINE_INFO_ENCODE_VLQ : Z := 255.
Definition ECMA_LINE_INFO_ENCODE_VLQ_MIN : Z := ECMA_LINE_INFO_ENCODE_TWO_BYTE_MIN + 255 + 1.
Definition ECMA_LINE_INFO_STREAM_VALUE_COUNT_MAX : Z := 48.
Definition ECMA_LINE_INFO_STREAM_SIZE_MIN : Z := 2 * ECMA_LINE_INFO_STREAM_VALUE_COUNT_MAX - 1.

(** ** Numbers *)

Fixpoint decode_vlq_loop (source : list Z) (value : Z) : option (Z * list Z) :=
  match source with
  | [] => None
  | byte :: source =>
      let value := (value <<32 ECMA_LINE_INFO_VLQ_SHIFT) |' (byte &' ECMA_LINE_INFO_VLQ_MASK) in
      if byte &' ECMA_LINE_INFO_VLQ_CONTINUE =? 0 then Some (value, source)
      else decode_vlq_loop source value
  end.

(** The decoded value, and the rest of the buffer *)
Definition ecma_line_info_decode_vlq (buffer : list Z) : option (Z * list Z) := decode_vlq_loop buffer 0.

Definition ecma_line_info_decode_small (buffer : list Z) : option (Z * list Z) :=
  match buffer with
  | [] => None
  | type :: source =>
      if type <? ECMA_LINE_INFO_ENCODE_TWO_BYTE_MIN then Some (type, source)
      else if type =? ECMA_LINE_INFO_ENCODE_TWO_BYTE then
        match source with
        | byte :: source => Some (byte +32 ECMA_LINE_INFO_ENCODE_TWO_BYTE_MIN, source)
        | [] => None
        end
      else let? (value, source) := ecma_line_info_decode_vlq source in Some (value +32 ECMA_LINE_INFO_ENCODE_VLQ_MIN, source)
  end.

(** The loops over the seven bit groups of a number; five groups hold 32 bits *)
Fixpoint vlq_length_loop (fuel : nat) (current_value length : Z) : Z :=
  match fuel with
  | O => length
  | S fuel =>
      let current_value := current_value >> ECMA_LINE_INFO_VLQ_SHIFT in
      if 0 <? current_value then vlq_length_loop fuel current_value (length + 1) else length + 1
  end.

(** Bytes are written from the end of the number to its start *)
Fixpoint vlq_write_loop (fuel : nat) (value : Z) (written : list Z) : list Z :=
  match fuel with
  | O => written
  | S fuel =>
      let written := u8 (value |' ECMA_LINE_INFO_VLQ_CONTINUE) :: written in
      let value := value >> ECMA_LINE_INFO_VLQ_SHIFT in
      if 0 <? value then vlq_write_loop fuel value written else written
  end.

(** The byte at an index is masked *)
Fixpoint mask_byte (index : nat) (mask : Z) (buffer : list Z) : list Z :=
  match buffer, index with
  | [], _ => []
  | byte :: buffer, O => (byte &' mask) :: buffer
  | byte :: buffer, S index => byte :: mask_byte index mask buffer
  end.

(** The bytes in the target buffer, and the returned length *)
Definition parser_line_info_encode_vlq (value : Z) : list Z * Z :=
  if value <=? ECMA_LINE_INFO_VLQ_MASK then ([u8 value], 1)
  else
    let length := vlq_length_loop 5 value 0 in
    let buffer := vlq_write_loop 5 value [] in
    (mask_byte (Z.to_nat (length - 1)) ECMA_LINE_INFO_VLQ_MASK buffer, length).

Definition parser_line_info_encode_small (value : Z) : list Z * Z :=
  if value <? ECMA_LINE_INFO_ENCODE_TWO_BYTE_MIN then ([u8 value], 1)
  else if value <? ECMA_LINE_INFO_ENCODE_VLQ_MIN then
    ([ECMA_LINE_INFO_ENCODE_TWO_BYTE; u8 (value - ECMA_LINE_INFO_ENCODE_TWO_BYTE_MIN)], 2)
  else
    let (buffer, length) := parser_line_info_encode_vlq (value -32 ECMA_LINE_INFO_ENCODE_VLQ_MIN) in
    (ECMA_LINE_INFO_ENCODE_VLQ :: buffer, length + 1).

(** ** Differences *)

Definition ecma_line_info_difference_update (current_value difference_value : Z) : Z :=
  if difference_value &' 1 =? ECMA_LINE_INFO_INCREASE
  then current_value +32 (difference_value >> 1) +32 1
  else current_value -32 (difference_value >> 1).

Definition parser_line_info_difference_get (current_value prev_value : Z) : Z :=
  let result := current_value -32 prev_value -32 1 in
  if result <=? (4294967295 >> 1) then (result <<32 1) |' ECMA_LINE_INFO_INCREASE
  else ((4294967295 - result) <<32 1) |' ECMA_LINE_INFO_DECREASE.

(** ** The search *)

(** The items of a stream, up to the item of the offset; an item has two bytes at
    least, so the length of the stream is enough fuel *)
Fixpoint line_info_stream (fuel : nat) (line_info : list Z) (line column end_offset offset : Z) : option (Z * Z) :=
  match fuel with
  | O => None
  | S fuel =>
      let? (end_offset_increase, line_info) := ecma_line_info_decode_small line_info in
      let? (line, column, line_info) :=
        (if end_offset_increase &' ECMA_LINE_INFO_HAS_LINE =? 0 then Some (line, column, line_info)
         else
           let? (value, line_info) := ecma_line_info_decode_small line_info in
           Some (ecma_line_info_difference_update line value, ECMA_LINE_INFO_COLUMN_DEFAULT, line_info)) in
      let end_offset_increase := end_offset_increase >> 1 in
      let? (value, line_info) := ecma_line_info_decode_small line_info in
      let column := ecma_line_info_difference_update column value in
      let end_offset := end_offset +32 end_offset_increase in
      if negb (end_offset_increase =? 0) && (end_offset <=? offset)
      then line_info_stream fuel line_info line column end_offset offset
      else Some (line, column)
  end.

(** A chunk, after the line it starts with *)
Definition line_info_chunk (next : list Z -> Z -> Z -> option (Z * Z)) (fuel : nat) (line_info : list Z) (line end_offset offset : Z)
  : option (Z * Z) :=
  match line_info with
  | [] => None
  | size :: stream =>
      if size =? 0 then line_info_stream fuel stream line ECMA_LINE_INFO_COLUMN_DEFAULT end_offset offset
      else
        let size_p := skipn (Z.to_nat (size + ECMA_LINE_INFO_STREAM_SIZE_MIN)) stream in
        let? (byte_code_size, size_p) := ecma_line_info_decode_vlq size_p in
        let next_end_offset := end_offset +32 byte_code_size in
        if offset <? next_end_offset
        then line_info_stream fuel stream line ECMA_LINE_INFO_COLUMN_DEFAULT end_offset offset
        else next size_p line next_end_offset
  end.

Fixpoint line_info_chunks (fuel : nat) (line_info : list Z) (line end_offset offset : Z) : option (Z * Z) :=
  match fuel with
  | O => None
  | S fuel =>
      let? (value, line_info) := ecma_line_info_decode_vlq line_info in
      let line := ecma_line_info_difference_update line value in
      line_info_chunk (fun line_info line end_offset => line_info_chunks fuel line_info line end_offset offset)
        fuel line_info line end_offset offset
  end.

(** The line and the column of a byte code offset *)
Definition ecma_line_info_get (line_info : list Z) (offset : Z) : option (Z * Z) :=
  let? (_, chunks) := ecma_line_info_decode_vlq line_info in
  line_info_chunks (length chunks) chunks 1 0 offset.

(** The size of the block that ecma_line_info_free gives back *)
Definition ecma_line_info_free_size (line_info : list Z) : option Z :=
  let? (total_length, source) := ecma_line_info_decode_vlq line_info in
  Some (total_length +32 u32 (zlength line_info - zlength source)).

(** ** Lemmas on numbers *)

Lemma byte_with_continue v : u8 (v |' ECMA_LINE_INFO_VLQ_CONTINUE) = 128 + v mod 128.
Proof.
  assert (H : forallb (fun k => Z.lor (Z.of_nat k) 128 mod 256 =? 128 + Z.of_nat k mod 128) (seq 0 256) = true) by now vm_compute.
  assert (E : u8 (Z.lor v 128) = Z.lor (v mod 256) 128 mod 256).
  { unfold u8. change 256 with (2 ^ 8) at 1 2 3. rewrite <- !Z.land_ones by lia. rewrite !Z.land_lor_distr_l.
    f_equal. now rewrite <- Z.land_assoc, Z.land_diag. }
  unfold ECMA_LINE_INFO_VLQ_CONTINUE. rewrite E. rewrite forallb_forall in H. specialize (H (Z.to_nat (v mod 256))).
  pose proof (Z.mod_pos_bound v 256 ltac:(lia)) as Hm. rewrite Z2Nat.id in H by lia.
  rewrite (proj1 (Z.eqb_eq _ _) (H ltac:(apply in_seq; lia))).
  change 256 with (128 * 2). rewrite Z.rem_mul_r by lia. rewrite Z.mul_comm, Z.mod_add by lia. now rewrite Z.mod_mod by lia.
Qed.

Lemma byte_masks x : 0 <= x < 128 ->
  (x &' ECMA_LINE_INFO_VLQ_MASK = x /\ (x &' ECMA_LINE_INFO_VLQ_CONTINUE =? 0) = true)
  /\ ((128 + x) &' ECMA_LINE_INFO_VLQ_MASK = x /\ ((128 + x) &' ECMA_LINE_INFO_VLQ_CONTINUE =? 0) = false).
Proof.
  intros Hx.
  assert (H : forallb (fun k => let x := Z.of_nat k in
      (Z.land x 127 =? x) && (Z.land x 128 =? 0) && ((Z.land (128 + x) 127 =? x) && negb (Z.land (128 + x) 128 =? 0))) (seq 0 128) = true)
    by now vm_compute.
  rewrite forallb_forall in H. specialize (H (Z.to_nat x) ltac:(apply in_seq; lia)). cbv zeta in H. rewrite Z2Nat.id in H by lia.
  apply andb_prop in H as [H1 H2]. apply andb_prop in H1 as [? ?]. apply andb_prop in H2 as [? H4]. apply negb_true_iff in H4.
  splits; try assumption; now apply Z.eqb_eq.
Qed.

(** The next group of a number *)
Lemma next_group v x : 0 <= v < 33554432 -> 0 <= x < 128 -> (v <<32 ECMA_LINE_INFO_VLQ_SHIFT) |' x = v * 128 + x.
Proof.
  intros Hv Hx. unfold ECMA_LINE_INFO_VLQ_SHIFT. rewrite Z.shiftl_mul_pow2 by lia. rewrite u32_small by (unfold is_u32; lia).
  apply lor_mul_low; lia.
Qed.

Lemma decode_continue v x source : 0 <= v < 33554432 -> 0 <= x < 128 ->
  decode_vlq_loop (128 + x :: source) v = decode_vlq_loop source (v * 128 + x).
Proof. intros Hv Hx. cbn [decode_vlq_loop]. destruct (byte_masks x Hx) as [_ [-> ->]]. now rewrite next_group. Qed.

Lemma decode_last v x source : 0 <= v < 33554432 -> 0 <= x < 128 -> decode_vlq_loop (x :: source) v = Some (v * 128 + x, source).
Proof. intros Hv Hx. cbn [decode_vlq_loop]. destruct (byte_masks x Hx) as [[-> ->] _]. now rewrite next_group. Qed.

Lemma group_of v : v >> ECMA_LINE_INFO_VLQ_SHIFT = v / 128.
Proof. now apply Z.shiftr_div_pow2. Qed.

Lemma write_loop_app fuel : forall v written, vlq_write_loop fuel v written = vlq_write_loop fuel v [] ++ written.
Proof.
  induction fuel as [| fuel IH]; intros v written; [reflexivity |]. cbn [vlq_write_loop].
  destruct (0 <? v >> _); [| reflexivity]. rewrite IH, (IH _ [_]). now rewrite <- app_assoc.
Qed.

Lemma write_loop_length fuel : forall v n, vlq_length_loop fuel v n = n + zlength (vlq_write_loop fuel v []).
Proof.
  induction fuel as [| fuel IH]; intros v n; cbn [vlq_length_loop vlq_write_loop]; [cbn; lia |].
  destruct (0 <? v >> _); [rewrite IH, (write_loop_app _ _ [_]), zlength_app, zlength_cons, (@zlength_nil Z); lia |].
  rewrite zlength_cons, (@zlength_nil Z). lia.
Qed.

Lemma write_loop_size fuel : forall v, 1 <= Z.of_nat fuel -> 1 <= zlength (vlq_write_loop fuel v []) <= Z.of_nat fuel.
Proof.
  induction fuel as [| fuel IH]; intros v Hf; [lia |]. cbn [vlq_write_loop].
  destruct (0 <? v >> _); [| rewrite zlength_cons, (@zlength_nil Z); lia].
  rewrite write_loop_app, zlength_app, zlength_cons, (@zlength_nil Z).
  destruct fuel as [| fuel]; [cbn; lia |]. specialize (IH (v >> ECMA_LINE_INFO_VLQ_SHIFT) ltac:(lia)). lia.
Qed.

Lemma decode_written fuel : forall v written source, 0 <= v < 128 ^ Z.of_nat fuel -> v < 4294967296 ->
  decode_vlq_loop (vlq_write_loop fuel v written ++ source) 0 = decode_vlq_loop (written ++ source) v.
Proof.
  induction fuel as [| fuel IH]; intros v written source Hv Hb.
  - cbn in *. now replace v with 0 by lia.
  - rewrite Nat2Z.inj_succ, Z.pow_succ_r in Hv by lia. cbn [vlq_write_loop]. rewrite byte_with_continue, group_of.
    pose proof (Z.div_mod v 128 ltac:(lia)) as E. pose proof (Z.mod_pos_bound v 128 ltac:(lia)) as Hm.
    destruct (Z.ltb_spec 0 (v / 128)) as [H | H].
    + rewrite IH by (Z.div_mod_to_equations; lia). cbn [app]. rewrite decode_continue by lia. f_equal. lia.
    + cbn [app]. rewrite decode_continue by lia. f_equal. lia.
Qed.

Lemma mask_last buffer byte mask : mask_byte (length buffer) mask (buffer ++ [byte]) = buffer ++ [byte &' mask].
Proof. induction buffer as [| b buffer IH]; cbn; [reflexivity | now rewrite IH]. Qed.

Lemma encode_vlq_bytes v : is_u32 v -> 127 < v ->
  parser_line_info_encode_vlq v = (vlq_write_loop 4 (v / 128) [v mod 128], 1 + zlength (vlq_write_loop 4 (v / 128) [])).
Proof.
  intros Hv H. unfold parser_line_info_encode_vlq. destruct (Z.leb_spec v ECMA_LINE_INFO_VLQ_MASK) as [Hc | _]; [unfold ECMA_LINE_INFO_VLQ_MASK in Hc; lia |].
  cbn [vlq_length_loop]. change (vlq_write_loop 5 v []) with
    (let written := u8 (v |' ECMA_LINE_INFO_VLQ_CONTINUE) :: [] in let value := v >> ECMA_LINE_INFO_VLQ_SHIFT in
     if 0 <? value then vlq_write_loop 4 value written else written). cbv zeta. rewrite byte_with_continue, group_of.
  destruct (Z.ltb_spec 0 (v / 128)); [| Z.div_mod_to_equations; lia].
  fold (vlq_length_loop 4 (v / 128) (0 + 1)). rewrite write_loop_length. f_equal.
  rewrite (write_loop_app _ _ [128 + _]), (write_loop_app _ _ [v mod 128]).
  replace (Z.to_nat _) with (length (vlq_write_loop 4 (v / 128) [])) by (unfold zlength; lia).
  rewrite mask_last. destruct (byte_masks (v mod 128) ltac:(Z.div_mod_to_equations; lia)) as [_ [-> _]]. reflexivity.
Qed.

(** The encoders: their lengths are those of the bytes they write *)
Lemma encode_vlq_length v : is_u32 v ->
  snd (parser_line_info_encode_vlq v) = zlength (fst (parser_line_info_encode_vlq v))
  /\ 1 <= zlength (fst (parser_line_info_encode_vlq v)) <= 5.
Proof.
  intros Hv. destruct (Z.leb_spec v 127) as [H | H].
  - unfold parser_line_info_encode_vlq, ECMA_LINE_INFO_VLQ_MASK. destruct (Z.leb_spec v 127); [| lia]. cbn. lia.
  - rewrite encode_vlq_bytes by assumption. cbn [fst snd]. rewrite (write_loop_app _ _ [_ mod _]), zlength_app, zlength_cons, (@zlength_nil Z).
    pose proof (write_loop_size 4 (v / 128) ltac:(lia)). lia.
Qed.

Lemma vlq_roundtrip v source : is_u32 v ->
  ecma_line_info_decode_vlq (fst (parser_line_info_encode_vlq v) ++ source) = Some (v, source).
Proof.
  intros Hv. unfold ecma_line_info_decode_vlq. destruct (Z.leb_spec v 127) as [H | H].
  - unfold parser_line_info_encode_vlq, ECMA_LINE_INFO_VLQ_MASK. destruct (Z.leb_spec v 127); [| lia]. cbn [fst app].
    unfold is_u32 in Hv. unfold u8. rewrite Z.mod_small by lia. rewrite decode_last by lia. reflexivity.
  - rewrite encode_vlq_bytes by assumption. cbn [fst]. unfold is_u32 in Hv.
    rewrite decode_written by (Z.div_mod_to_equations; lia). cbn [app]. rewrite decode_last by (Z.div_mod_to_equations; lia).
    repeat f_equal. Z.div_mod_to_equations; lia.
Qed.

Lemma encode_small_length v : is_u32 v ->
  snd (parser_line_info_encode_small v) = zlength (fst (parser_line_info_encode_small v))
  /\ 1 <= zlength (fst (parser_line_info_encode_small v)) <= 6.
Proof.
  intros Hv. unfold parser_line_info_encode_small. zcase; [cbn; lia |]. zcase; [cbn; lia |].
  set (v' := v -32 _). destruct (encode_vlq_length v' (u32_range _)) as [Hn Hb].
  destruct (parser_line_info_encode_vlq v') as [bytes n]. cbn [fst snd] in *. rewrite zlength_cons. lia.
Qed.

Lemma small_roundtrip v source : is_u32 v ->
  ecma_line_info_decode_small (fst (parser_line_info_encode_small v) ++ source) = Some (v, source).
Proof.
  intros Hv. unfold is_u32 in Hv. unfold parser_line_info_encode_small, ecma_line_info_decode_small.
  destruct (Z.ltb_spec v ECMA_LINE_INFO_ENCODE_TWO_BYTE_MIN) as [H1 | H1]; cbn [fst app].
  { unfold ECMA_LINE_INFO_ENCODE_TWO_BYTE_MIN in H1. unfold u8. rewrite Z.mod_small by lia.
    destruct (Z.ltb_spec v ECMA_LINE_INFO_ENCODE_TWO_BYTE_MIN) as [| H]; [reflexivity | unfold ECMA_LINE_INFO_ENCODE_TWO_BYTE_MIN in H; lia]. }
  destruct (Z.ltb_spec v ECMA_LINE_INFO_ENCODE_VLQ_MIN) as [H2 | H2]; cbn [fst app].
  { unfold ECMA_LINE_INFO_ENCODE_TWO_BYTE, ECMA_LINE_INFO_ENCODE_VLQ_MIN, ECMA_LINE_INFO_ENCODE_TWO_BYTE_MIN in *. cbn [Z.sub Z.ltb Z.eqb].
    replace (255 - 1 <? 255 - 1) with false by reflexivity. replace (255 - 1 =? 255 - 1) with true by reflexivity. f_equal. f_equal.
    unfold u8. rewrite (Z.mod_small (v - _)) by lia. rewrite u32_small by (unfold is_u32; lia). lia. }
  unfold ECMA_LINE_INFO_ENCODE_VLQ_MIN, ECMA_LINE_INFO_ENCODE_TWO_BYTE_MIN in H2.
  rewrite (u32_small (v - _)) by (unfold is_u32, ECMA_LINE_INFO_ENCODE_VLQ_MIN, ECMA_LINE_INFO_ENCODE_TWO_BYTE_MIN; lia).
  set (v' := v - _). pose proof (vlq_roundtrip v' source ltac:(unfold is_u32, v', ECMA_LINE_INFO_ENCODE_VLQ_MIN, ECMA_LINE_INFO_ENCODE_TWO_BYTE_MIN; lia)) as E.
  destruct (parser_line_info_encode_vlq v') as [bytes n]. cbn [fst app] in *.
  replace (ECMA_LINE_INFO_ENCODE_VLQ <? ECMA_LINE_INFO_ENCODE_TWO_BYTE_MIN) with false by reflexivity.
  replace (ECMA_LINE_INFO_ENCODE_VLQ =? ECMA_LINE_INFO_ENCODE_TWO_BYTE) with false by reflexivity.
  rewrite E. f_equal. f_equal. unfold v'. rewrite u32_small by (unfold is_u32; lia). lia.
Qed.

(** The update inverts the difference, for all pairs of values *)
Lemma difference_roundtrip current prev : is_u32 current -> is_u32 prev ->
  is_u32 (parser_line_info_difference_get current prev)
  /\ ecma_line_info_difference_update prev (parser_line_info_difference_get current prev) = current.
Proof.
  intros Hc Hp. unfold parser_line_info_difference_get. set (r := current -32 prev -32 1).
  assert (Hr : is_u32 r) by apply u32_range.
  assert (Er : current = u32 (prev + r + 1)) by (unfold r; unfold is_u32 in *; zmod; Z.div_mod_to_equations; lia).
  clearbody r. unfold is_u32 in *. change (4294967295 >> 1) with 2147483647.
  assert (Hd : forall x b, 0 <= x < 2147483648 -> (b = 0 \/ b = 1) ->
    (x <<32 1) |' b = 2 * x + b /\ (2 * x + b) &' 1 = b /\ (2 * x + b) >> 1 = x).
  { intros x b Hx Hb. splits.
    - rewrite Z.shiftl_mul_pow2 by lia. rewrite u32_small by (unfold is_u32; lia). rewrite lor_mul_low by lia. lia.
    - rewrite (land_ones' _ 1) by lia. Z.div_mod_to_equations; lia.
    - rewrite Z.shiftr_div_pow2 by lia. Z.div_mod_to_equations; lia. }
  destruct (Z.leb_spec r 2147483647) as [H | H].
  - destruct (Hd r 0 ltac:(lia) ltac:(lia)) as (E1 & E2 & E3). unfold ECMA_LINE_INFO_INCREASE. rewrite E1. split; [lia |].
    unfold ecma_line_info_difference_update, ECMA_LINE_INFO_INCREASE. rewrite E2, E3. cbn [Z.eqb]. rewrite Er. now zmod.
  - destruct (Hd (4294967295 - r) 1 ltac:(lia) ltac:(lia)) as (E1 & E2 & E3). unfold ECMA_LINE_INFO_DECREASE. rewrite E1. split; [lia |].
    unfold ecma_line_info_difference_update, ECMA_LINE_INFO_INCREASE. rewrite E2, E3. cbn [Z.eqb]. rewrite Er. now zmod.
Qed.

(** ** Fuel *)

Lemma decode_vlq_shorter buffer value : forall v rest, decode_vlq_loop buffer value = Some (v, rest) -> (length rest < length buffer)%nat.
Proof.
  revert value. induction buffer as [| b buffer IH]; intros value v rest; cbn [decode_vlq_loop]; [discriminate |].
  destruct (_ =? 0); [intros [= _ ->]; cbn; lia | intros H; apply IH in H; cbn; lia].
Qed.

Lemma decode_small_shorter buffer v rest : ecma_line_info_decode_small buffer = Some (v, rest) -> (length rest < length buffer)%nat.
Proof.
  destruct buffer as [| b buffer]; cbn [ecma_line_info_decode_small]; [discriminate |].
  destruct (_ <? _); [intros [= _ ->]; cbn; lia |]. destruct (_ =? _).
  - destruct buffer as [| c buffer]; [discriminate | intros [= _ ->]; cbn; lia].
  - destruct (ecma_line_info_decode_vlq buffer) as [[v' rest'] |] eqn:E; [| discriminate]. intros [= _ ->].
    apply decode_vlq_shorter in E. cbn. lia.
Qed.

(** One item of a stream: the position it ends at, and the position it describes *)
Definition stream_item (line_info : list Z) (line column : Z) : option (Z * Z * Z * list Z) :=
  let? (end_offset_increase, line_info) := ecma_line_info_decode_small line_info in
  let? (line, column, line_info) :=
    (if end_offset_increase &' ECMA_LINE_INFO_HAS_LINE =? 0 then Some (line, column, line_info)
     else
       let? (value, line_info) := ecma_line_info_decode_small line_info in
       Some (ecma_line_info_difference_update line value, ECMA_LINE_INFO_COLUMN_DEFAULT, line_info)) in
  let? (value, line_info) := ecma_line_info_decode_small line_info in
  Some (end_offset_increase >> 1, line, ecma_line_info_difference_update column value, line_info).

Lemma stream_item_shorter buffer line column i l c rest :
  stream_item buffer line column = Some (i, l, c, rest) -> (length rest < length buffer)%nat.
Proof.
  unfold stream_item. destruct (ecma_line_info_decode_small buffer) as [[inc b1] |] eqn:E1; [| discriminate]. apply decode_small_shorter in E1.
  destruct (_ =? 0).
  - destruct (ecma_line_info_decode_small b1) as [[v b2] |] eqn:E2; [| discriminate]. apply decode_small_shorter in E2. intros [= _ _ _ ->]. lia.
  - destruct (ecma_line_info_decode_small b1) as [[v b2] |] eqn:E2; [| discriminate]. apply decode_small_shorter in E2.
    destruct (ecma_line_info_decode_small b2) as [[v' b3] |] eqn:E3; [| discriminate]. apply decode_small_shorter in E3. intros [= _ _ _ ->]. lia.
Qed.

Lemma stream_step fuel buffer line column end_offset offset :
  line_info_stream (S fuel) buffer line column end_offset offset =
  match stream_item buffer line column with
  | Some (i, l, c, rest) =>
      if negb (i =? 0) && (end_offset +32 i <=? offset) then line_info_stream fuel rest l c (end_offset +32 i) offset else Some (l, c)
  | None => None
  end.
Proof.
  cbn [line_info_stream]. unfold stream_item. destruct (ecma_line_info_decode_small buffer) as [[inc b1] |]; [| reflexivity].
  destruct (_ =? 0); [destruct (ecma_line_info_decode_small b1) as [[v b2] |]; reflexivity |].
  destruct (ecma_line_info_decode_small b1) as [[v b2] |]; [| reflexivity]. now destruct (ecma_line_info_decode_small b2) as [[v' b3] |].
Qed.

Lemma stream_mono f : forall f' buffer line column end_offset offset r, (f <= f')%nat ->
  line_info_stream f buffer line column end_offset offset = Some r -> line_info_stream f' buffer line column end_offset offset = Some r.
Proof.
  induction f as [| f IH]; intros [| f'] buffer line column end_offset offset r Hf; try (discriminate || lia).
  rewrite !stream_step. destruct (stream_item buffer line column) as [[[[i l] c] rest] |]; [| discriminate].
  destruct (_ && _); [apply IH; lia | easy].
Qed.

(** The length of the buffer is enough *)
Lemma stream_enough f : forall buffer line column end_offset offset r,
  line_info_stream f buffer line column end_offset offset = Some r ->
  line_info_stream (length buffer) buffer line column end_offset offset = Some r.
Proof.
  induction f as [| f IH]; intros buffer line column end_offset offset r; [discriminate |]. rewrite stream_step.
  destruct (stream_item buffer line column) as [[[[i l] c] rest] |] eqn:E; [| discriminate].
  pose proof (stream_item_shorter _ _ _ _ _ _ _ E) as Hl. destruct (length buffer) as [| n] eqn:En; [lia |]. rewrite stream_step, E.
  destruct (_ && _); [| easy]. intros H. apply IH in H. apply (stream_mono (length rest)); [lia | exact H].
Qed.

Lemma chunk_mono (next next' : list Z -> Z -> Z -> option (Z * Z)) f f' buffer line end_offset offset r : (f <= f')%nat ->
  (forall b l e, next b l e = Some r -> next' b l e = Some r) ->
  line_info_chunk next f buffer line end_offset offset = Some r -> line_info_chunk next' f' buffer line end_offset offset = Some r.
Proof.
  intros Hf Hn. unfold line_info_chunk. destruct buffer as [| size stream]; [discriminate |].
  destruct (size =? 0); [now apply stream_mono |]. destruct (ecma_line_info_decode_vlq _) as [[v rest] |]; [| discriminate].
  destruct (_ <? _); [now apply stream_mono | apply Hn].
Qed.

Lemma chunks_mono f : forall f' buffer line end_offset offset r, (f <= f')%nat ->
  line_info_chunks f buffer line end_offset offset = Some r -> line_info_chunks f' buffer line end_offset offset = Some r.
Proof.
  induction f as [| f IH]; intros [| f'] buffer line end_offset offset r Hf; try (discriminate || lia). cbn [line_info_chunks].
  destruct (ecma_line_info_decode_vlq buffer) as [[v rest] |]; [| discriminate].
  apply chunk_mono; [lia |]. intros b l e. apply IH. lia.
Qed.

Lemma chunks_enough f : forall buffer line end_offset offset r,
  line_info_chunks f buffer line end_offset offset = Some r ->
  line_info_chunks (length buffer) buffer line end_offset offset = Some r.
Proof.
  induction f as [| f IH]; intros buffer line end_offset offset r; [discriminate |]. cbn [line_info_chunks].
  destruct (ecma_line_info_decode_vlq buffer) as [[v rest] |] eqn:E; [| discriminate]. pose proof (decode_vlq_shorter _ _ _ _ E) as Hl.
  destruct (length buffer) as [| n] eqn:En; [lia |]. cbn [line_info_chunks]. rewrite E. unfold line_info_chunk.
  destruct rest as [| size stream]; [discriminate |]. cbn [length] in Hl.
  assert (Hs : forall l e, line_info_stream f stream l ECMA_LINE_INFO_COLUMN_DEFAULT e offset = Some r ->
    line_info_stream n stream l ECMA_LINE_INFO_COLUMN_DEFAULT e offset = Some r).
  { intros l e H. apply stream_enough in H. apply (stream_mono (length stream)); [lia | exact H]. }
  destruct (size =? 0); [apply Hs |]. destruct (ecma_line_info_decode_vlq (skipn _ _)) as [[v' rest'] |] eqn:E'; [| discriminate].
  apply decode_vlq_shorter in E'. rewrite length_skipn in E'. destruct (_ <? _); [apply Hs |].
  intros H. apply IH in H. apply (chunks_mono (length rest')); [lia | exact H].
Qed.

(** ** The search, without fuel *)

Definition stream_reads (buffer : list Z) (line column end_offset offset : Z) (r : Z * Z) : Prop :=
  exists f, line_info_stream f buffer line column end_offset offset = Some r.

Definition chunk_reads (buffer : list Z) (line end_offset offset : Z) (r : Z * Z) : Prop :=
  exists f, line_info_chunk (fun b l e => line_info_chunks f b l e offset) f buffer line end_offset offset = Some r.

Definition chunks_read (buffer : list Z) (line end_offset offset : Z) (r : Z * Z) : Prop :=
  exists f, line_info_chunks f buffer line end_offset offset = Some r.

(** An item that ends after the offset, or that ends the stream *)
Lemma stream_stop buffer line column end_offset offset i l c rest : stream_item buffer line column = Some (i, l, c, rest) ->
  i = 0 \/ offset < end_offset +32 i -> stream_reads buffer line column end_offset offset (l, c).
Proof.
  intros E H. exists 1%nat. rewrite stream_step, E. destruct (Z.eqb_spec i 0); [reflexivity |].
  destruct (Z.leb_spec (end_offset +32 i) offset); [lia | reflexivity].
Qed.

Lemma stream_next buffer line column end_offset offset i l c rest r : stream_item buffer line column = Some (i, l, c, rest) ->
  i <> 0 -> end_offset +32 i <= offset -> stream_reads rest l c (end_offset +32 i) offset r ->
  stream_reads buffer line column end_offset offset r.
Proof.
  intros E Hi H [f Hf]. exists (S f). rewrite stream_step, E. destruct (Z.eqb_spec i 0); [lia |].
  destruct (Z.leb_spec (end_offset +32 i) offset); [exact Hf | lia].
Qed.

Lemma chunk_last stream line end_offset offset r :
  stream_reads stream line ECMA_LINE_INFO_COLUMN_DEFAULT end_offset offset r -> chunk_reads (0 :: stream) line end_offset offset r.
Proof. intros [f Hf]. exists f. exact Hf. Qed.

(** A chunk with its size, and the byte code size of its range *)
Lemma chunk_sized stream range rest line end_offset offset r :
  let size := zlength stream - ECMA_LINE_INFO_STREAM_SIZE_MIN in 1 <= size -> is_u32 range ->
  (offset < end_offset +32 range ->
    stream_reads (stream ++ fst (parser_line_info_encode_vlq range) ++ rest) line ECMA_LINE_INFO_COLUMN_DEFAULT end_offset offset r) ->
  (end_offset +32 range <= offset -> chunks_read rest line (end_offset +32 range) offset r) ->
  chunk_reads (size :: stream ++ fst (parser_line_info_encode_vlq range) ++ rest) line end_offset offset r.
Proof.
  intros size Hsize Hrange Hin Hout.
  assert (Hskip : skipn (Z.to_nat (size + ECMA_LINE_INFO_STREAM_SIZE_MIN)) (stream ++ fst (parser_line_info_encode_vlq range) ++ rest)
    = fst (parser_line_info_encode_vlq range) ++ rest).
  { unfold size, zlength. replace (Z.to_nat _) with (length stream) by lia. rewrite skipn_app, skipn_all, Nat.sub_diag. reflexivity. }
  unfold chunk_reads, line_info_chunk. destruct (Z.ltb_spec offset (end_offset +32 range)) as [H | H].
  - destruct (Hin H) as [f Hf]. exists f. destruct (Z.eqb_spec size 0); [lia |]. rewrite Hskip, vlq_roundtrip by assumption.
    destruct (Z.ltb_spec offset (end_offset +32 range)); [exact Hf | lia].
  - destruct (Hout H) as [f Hf]. exists f. destruct (Z.eqb_spec size 0); [lia |]. rewrite Hskip, vlq_roundtrip by assumption.
    destruct (Z.ltb_spec offset (end_offset +32 range)); [lia | exact Hf].
Qed.

(** A chunk starts with its line *)
Lemma chunks_line prev line rest end_offset offset r : is_u32 prev -> is_u32 line -> chunk_reads rest line end_offset offset r ->
  chunks_read (fst (parser_line_info_encode_vlq (parser_line_info_difference_get line prev)) ++ rest) prev end_offset offset r.
Proof.
  intros Hp Hl [f Hf]. destruct (difference_roundtrip line prev Hl Hp) as [Hu Hd]. exists (S f). cbn [line_info_chunks].
  rewrite vlq_roundtrip by exact Hu. rewrite Hd. exact Hf.
Qed.

Lemma get_reads length_value chunks offset r : is_u32 length_value -> chunks_read chunks 1 0 offset r ->
  ecma_line_info_get (fst (parser_line_info_encode_vlq length_value) ++ chunks) offset = Some r.
Proof. intros Hl [f Hf]. unfold ecma_line_info_get. rewrite vlq_roundtrip by exact Hl. now apply chunks_enough in Hf. Qed.
