(* ===== verification/LineInfoCreate.v ===== *)
(** * Creation of line info

    src/jjs-core/parser/js/js-parser-line-info-create.c: the positions the parser
    collects in pages, and the line info generated from them after the byte code
    is final.  The encoders of numbers are in LineInfo.  The pages of the parser
    never run out of memory here: parser_malloc_vm raises a syntax error then, and
    leaves these functions. *)
From Stdlib Require Import ZArith List Lia Bool.
From S2P Require Import Prelude LineInfo.
Import ListNotations.
#[local] Open Scope Z_scope.
#[local] Open Scope word_scope.
#[local] Open Scope partial_scope.

(** ** Constants, with pointers of 64 bits *)

Definition PARSER_LINE_INFO_BUFFER_MAX_SIZE : Z := 6.
Definition PARSER_LINE_INFO_STREAM_SIZE_LIMIT : Z :=
  ECMA_LINE_INFO_STREAM_SIZE_MIN + 255 - (2 * PARSER_LINE_INFO_BUFFER_MAX_SIZE + 1).
Definition PARSER_STACK_PAGE_SIZE : Z := 128 - 8.
Definition PARSER_CBC_STREAM_PAGE_SIZE : Z := 64 - 8.
Definition CBC_LOWER_SEVEN_BIT_MASK : Z := 127.

(** ** Collecting positions *)

(** parser_line_info_data_t: the bytes of the pages that are in use, the first byte
    of a page included, which is the offset behind the last number of the page *)
Record line_info_data := mk_data {
  data_pages : list (list Z);
  data_byte_code_position : Z;
  data_line : Z;
  data_column : Z
}.

(** The number is written behind the last one of the last page, or on a new page *)
Fixpoint append_to_pages (pages : list (list Z)) (buffer : list Z) (length : Z) : list (list Z) :=
  match pages with
  | [] => []
  | [page] =>
      let offset := hd 0 page in
      if offset + length <=? PARSER_STACK_PAGE_SIZE
      then [u8 (length + offset) :: tl (firstn (Z.to_nat offset) page) ++ buffer]
      else [page; u8 (length + 1) :: buffer]
  | page :: pages => page :: append_to_pages pages buffer length
  end.

Definition parser_line_info_append_number (pages : list (list Z)) (value : Z) : list (list Z) :=
  let (buffer, length) := parser_line_info_encode_vlq value in append_to_pages pages buffer length.

Definition append_position (data : line_info_data) (has_line byte_code_size line column : Z) : line_info_data :=
  let value := has_line |' ((byte_code_size -32 data_byte_code_position data) <<32 1) in
  let pages := parser_line_info_append_number (data_pages data) value in
  let pages :=
    if value &' ECMA_LINE_INFO_HAS_LINE =? 0 then pages
    else parser_line_info_append_number pages (parser_line_info_difference_get line (data_line data)) in
  let pages := parser_line_info_append_number pages (parser_line_info_difference_get column (data_column data)) in
  mk_data pages byte_code_size line column.

(** The line info of the context ([None] is the NULL pointer) *)
Definition parser_line_info_append (info : option line_info_data) (byte_code_size line column : Z) : option line_info_data :=
  match info with
  | Some data =>
      if (data_byte_code_position data =? byte_code_size) || ((data_line data =? line) && (data_column data =? column)) then info
      else Some (append_position data (Z.b2z (negb (line =? data_line data))) byte_code_size line column)
  | None => Some (append_position (mk_data [[1]] 0 1 1) (Z.b2z (negb (line =? 1))) byte_code_size line column)
  end.

(** ** Reading the positions *)

(** parser_line_info_iterator_t: the current page and the next ones, and the
    offset in the current page; no page stands for the NULL pointer *)
Record iterator := mk_iterator { iterator_pages : list (list Z); iterator_offset : Z }.

Definition parser_line_info_iterator_get (it : iterator) : option (Z * iterator) :=
  match iterator_pages it with
  | [] => None
  | page :: pages =>
      let? (result, source) := ecma_line_info_decode_vlq (skipn (Z.to_nat (iterator_offset it)) page) in
      let offset := zlength page - zlength source in
      Some (result, if offset <? hd 0 page then mk_iterator (page :: pages) offset else mk_iterator pages 1)
  end.

(** The variables that follow the positions: the pages of the byte code from the
    current one, the offset in the current page and the final offset of the page,
    the last offset and position that were used, and the current position *)
Record positions := mk_positions {
  byte_code_pages : list (list Z);
  byte_code_page_offset : Z;
  byte_code_base : Z;
  last_byte_code_offset : Z;
  prev_position : Z * Z;
  position : Z * Z
}.

(** The pages hold the offsets after post processing, modulo 2^7 *)
Definition relative_offset (page : list Z) (index : Z) : option Z :=
  option_map (fun byte => byte &' CBC_LOWER_SEVEN_BIT_MASK) (nth_error page (Z.to_nat index)).

Fixpoint skip_byte_code_pages (pages : list (list Z)) (page_offset base : Z) : option (list (list Z) * Z * Z) :=
  if PARSER_CBC_STREAM_PAGE_SIZE <=? page_offset then
    match pages with
    | [] => None
    | page :: pages =>
        let? relative := relative_offset page (PARSER_CBC_STREAM_PAGE_SIZE - 1) in
        skip_byte_code_pages pages (page_offset -32 PARSER_CBC_STREAM_PAGE_SIZE) (base +32 relative)
    end
  else Some (pages, page_offset, base).

(** The next position: [iterator_byte_code_offset] and the new variables *)
Definition next_position (it : iterator) (p : positions) : option (Z * iterator * positions) :=
  let? (value, it) := parser_line_info_iterator_get it in
  let page_offset := byte_code_page_offset p +32 (value >> 1) in
  let? (line, it) :=
    (if value &' 1 =? 0 then Some (fst (position p), it)
     else let? (value, it) := parser_line_info_iterator_get it in
          Some (ecma_line_info_difference_update (fst (position p)) value, it)) in
  let? (value, it) := parser_line_info_iterator_get it in
  let column := ecma_line_info_difference_update (snd (position p)) value in
  let? (pages, page_offset, base) := skip_byte_code_pages (byte_code_pages p) page_offset (byte_code_base p) in
  let? offset :=
    (if 0 <? page_offset then
       match pages with
       | [] => None
       | page :: _ => let? relative := relative_offset page (page_offset - 1) in Some (base +32 relative)
       end
     else Some base) in
  Some (offset, it, mk_positions pages page_offset base (last_byte_code_offset p) (prev_position p) (line, column)).

(** ** Writing the line info *)

(** The first run counts the bytes, the second one writes them ([dst]) *)
Record output := mk_output { dst : option (list Z); total_length : Z }.

Definition put (o : output) (bytes : list Z) : output :=
  match dst o with Some written => mk_output (Some (written ++ bytes)) (total_length o) | None => o end.

Definition count (o : output) (n : Z) : output :=
  match dst o with Some _ => o | None => mk_output None (total_length o +32 n) end.

(** [*block_size_p = byte] in the second run *)
Definition put_size (o : output) (index byte : Z) : output :=
  match dst o with
  | Some written => mk_output (Some (firstn (Z.to_nat index) written ++ byte :: skipn (S (Z.to_nat index)) written)) (total_length o)
  | None => o
  end.

Record generator := mk_generator {
  block_size_p : option Z;
  block_byte_code_offset : Z;
  block_prev_line : Z;
  stream_byte_code_offset : Z;
  stream_current_line : Z;
  stream_current_column : Z;
  stream_prev_line : Z;
  stream_prev_column : Z;
  stream_size : Z;
  stream_value_count : Z;
  out : output
}.

Definition new_generator (o : output) : generator :=
  mk_generator None 0 1 0 1 ECMA_LINE_INFO_COLUMN_DEFAULT 1 ECMA_LINE_INFO_COLUMN_DEFAULT 0 0 o.

(** "Start a new chunk": its line, and a byte for its size *)
Definition start_chunk (g : generator) (o : output) (block_byte_code_offset stream_byte_code_offset line column : Z) : generator :=
  let (buffer, size) := parser_line_info_encode_vlq (parser_line_info_difference_get line (block_prev_line g)) in
  let o' := put o buffer in
  let block_size_p := match dst o' with Some written => zlength written | None => size end in
  let o'' := count (put o' [0]) (size + 1) in
  mk_generator (Some block_size_p) block_byte_code_offset line stream_byte_code_offset line column line ECMA_LINE_INFO_COLUMN_DEFAULT 0 0 o''.

(** The line, if it changed, and the column of an item: the bytes, their size and
    the position they end at *)
Definition line_column_item (has_line : bool) (line column prev_line prev_column : Z) : list Z * Z :=
  let '(line_bytes, line_size) :=
    if has_line then parser_line_info_encode_small (parser_line_info_difference_get line prev_line) else ([], 0) in
  let prev_column := if has_line then ECMA_LINE_INFO_COLUMN_DEFAULT else prev_column in
  let '(column_bytes, column_size) := parser_line_info_encode_small (parser_line_info_difference_get column prev_column) in
  (line_bytes ++ column_bytes, line_size + column_size).

(** A position that is not skipped: the previous position gets its item, which may
    be the last one of its chunk *)
Definition generate_position (g : generator) (line column offset : Z) : generator :=
  match block_size_p g with
  | None => start_chunk g (out g) (block_byte_code_offset g) (stream_byte_code_offset g) line column
  | Some size_p =>
      let value := ((offset -32 stream_byte_code_offset g) <<32 1)
                     |' Z.b2z (negb (stream_prev_line g =? stream_current_line g)) in
      let '(block_buffer, offset_size) := parser_line_info_encode_small value in
      let has_line := negb (value &' ECMA_LINE_INFO_HAS_LINE =? 0) in
      let '(line_column_buffer, line_column_size) :=
        line_column_item has_line (stream_current_line g) (stream_current_column g) (stream_prev_line g) (stream_prev_column g) in
      let prev_line := if has_line then stream_current_line g else stream_prev_line g in
      let value_count := stream_value_count g + 1 in
      if (value_count <? ECMA_LINE_INFO_STREAM_VALUE_COUNT_MAX)
         && (stream_size g + offset_size + line_column_size <=? PARSER_LINE_INFO_STREAM_SIZE_LIMIT) then
        mk_generator (Some size_p) (block_byte_code_offset g) (block_prev_line g) offset line column prev_line (stream_current_column g)
          (stream_size g + offset_size + line_column_size) value_count (put (put (out g) block_buffer) line_column_buffer)
      else
        let size := stream_size g + (1 + line_column_size) in
        let o := put_size (out g) size_p (u8 (size - ECMA_LINE_INFO_STREAM_SIZE_MIN)) in
        let o := put o [u8 (hd 0 block_buffer &' ECMA_LINE_INFO_HAS_LINE)] in
        let o := count (put o line_column_buffer) size in
        let '(range_bytes, range_size) := parser_line_info_encode_vlq (offset -32 block_byte_code_offset g) in
        start_chunk g (count (put o range_bytes) range_size) offset offset line column
  end.

(** "Finalize the last stream"; [None] is a write through the NULL pointer *)
Definition finish_stream (g : generator) : option output :=
  let value := Z.b2z (negb (stream_prev_line g =? stream_current_line g)) in
  let? o := (match dst (out g), block_size_p g with
             | None, _ => Some (count (out g) (stream_size g + 1))
             | Some _, Some size_p => Some (put (put_size (out g) size_p 0) [u8 value])
             | Some _, None => None
             end) in
  let '(line_bytes, line_size) :=
    if value =? 0 then ([], 0)
    else parser_line_info_encode_small (parser_line_info_difference_get (stream_current_line g) (stream_prev_line g)) in
  let prev_column := if value =? 0 then stream_prev_column g else ECMA_LINE_INFO_COLUMN_DEFAULT in
  let '(column_bytes, column_size) :=
    parser_line_info_encode_small (parser_line_info_difference_get (stream_current_column g) prev_column) in
  Some (count (put (put o line_bytes) column_bytes) (line_size + column_size)).

(** A position has two bytes at least, so the bytes of the pages are enough fuel *)
Fixpoint generate_loop (fuel : nat) (it : iterator) (p : positions) (g : generator) : option generator :=
  match fuel with
  | O => None
  | S fuel =>
      let? (offset, it, p) := next_position it p in
      let skipped := (offset =? last_byte_code_offset p)
                       || ((fst (position p) =? fst (prev_position p)) && (snd (position p) =? snd (prev_position p))) in
      let p' := if skipped then p
                else mk_positions (byte_code_pages p) (byte_code_page_offset p) (byte_code_base p) offset (position p) (position p) in
      let g := if skipped then g else generate_position g (fst (position p)) (snd (position p)) offset in
      match iterator_pages it with
      | [] => Some g
      | _ => generate_loop fuel it p' g
      end
  end.

Definition generate_run (pages code : list (list Z)) (o : output) : option output :=
  let? g := generate_loop (length (concat pages)) (mk_iterator pages 1)
              (mk_positions code 0 0 4294967295 (0, 0) (1, 1)) (new_generator o) in
  finish_stream g.

(** The line info, and the size of its block *)
Definition parser_line_info_generate (info : line_info_data) (code : list (list Z)) : option (list Z * Z) :=
  let? counted := generate_run (data_pages info) code (mk_output None 0) in
  let total := total_length counted in
  let (header, total_length_size) := parser_line_info_encode_vlq total in
  let? written := generate_run (data_pages info) code (mk_output (Some header) 0) in
  let? bytes := dst written in
  Some (bytes, total + total_length_size).

(** ** What the pages hold *)

#[local] Ltac one := constructor; [assumption || discriminate || easy | constructor].


Definition vlq_bytes (v : Z) : list Z := fst (parser_line_info_encode_vlq v).

Definition page_ok (page numbers : list Z) : Prop :=
  let bytes := flat_map vlq_bytes numbers in
  page = 1 + zlength bytes :: bytes /\ 1 + zlength bytes <= PARSER_STACK_PAGE_SIZE /\ Forall is_u32 numbers.

Definition pages_hold (pages : list (list Z)) (numbers : list Z) : Prop :=
  exists groups, Forall2 page_ok pages groups /\ Forall (fun group => group <> []) groups /\ concat groups = numbers.

Lemma vlq_bytes_length v : is_u32 v -> parser_line_info_encode_vlq v = (vlq_bytes v, zlength (vlq_bytes v)) /\ 1 <= zlength (vlq_bytes v) <= 5.
Proof.
  intros Hv. destruct (encode_vlq_length v Hv) as [H1 H2]. split; [| exact H2]. unfold vlq_bytes. rewrite <- H1. apply surjective_pairing.
Qed.

Lemma decode_bytes v source : is_u32 v -> ecma_line_info_decode_vlq (vlq_bytes v ++ source) = Some (v, source).
Proof. apply vlq_roundtrip. Qed.

Lemma page_new v : is_u32 v -> page_ok (u8 (zlength (vlq_bytes v) + 1) :: vlq_bytes v) [v].
Proof.
  intros Hv. destruct (vlq_bytes_length v Hv) as [_ Hl]. unfold page_ok. cbn [flat_map]. rewrite app_nil_r. splits.
  - f_equal. unfold u8. rewrite Z.mod_small; lia.
  - unfold PARSER_STACK_PAGE_SIZE. lia.
  - one.
Qed.

Lemma page_append page numbers v : page_ok page numbers -> is_u32 v ->
  let offset := hd 0 page in offset + zlength (vlq_bytes v) <= PARSER_STACK_PAGE_SIZE ->
  page_ok (u8 (zlength (vlq_bytes v) + offset) :: tl (firstn (Z.to_nat offset) page) ++ vlq_bytes v) (numbers ++ [v]).
Proof.
  intros (E & Hp & Hn) Hv offset Hoffset. destruct (vlq_bytes_length v Hv) as [_ Hl].
  set (bytes := flat_map vlq_bytes numbers) in *. pose proof (zlength_nonneg bytes).
  assert (Eo : offset = 1 + zlength bytes) by (unfold offset; now rewrite E). clearbody offset. subst offset page.
  unfold page_ok. rewrite flat_map_app. fold bytes. cbn [flat_map]. rewrite app_nil_r, zlength_app.
  unfold PARSER_STACK_PAGE_SIZE in *. splits.
  - f_equal; [unfold u8; rewrite Z.mod_small; lia |].
    replace (Z.to_nat (1 + zlength bytes)) with (S (length bytes)) by (unfold zlength; lia). cbn [firstn tl]. now rewrite firstn_all.
  - lia.
  - apply Forall_app. split; [assumption | one].
Qed.

Lemma append_number_ok pages numbers v : pages_hold pages numbers -> pages <> [] -> is_u32 v ->
  pages_hold (parser_line_info_append_number pages v) (numbers ++ [v]) /\ parser_line_info_append_number pages v <> [].
Proof.
  intros (groups & Hg & Hne & <-) Hp Hv. unfold parser_line_info_append_number. destruct (vlq_bytes_length v Hv) as [-> _].
  assert (H : exists groups', Forall2 page_ok (append_to_pages pages (vlq_bytes v) (zlength (vlq_bytes v))) groups'
    /\ Forall (fun group => group <> []) groups' /\ concat groups' = concat groups ++ [v]).
  { revert groups Hg Hne. induction pages as [| page pages IH]; intros groups Hg Hne; [easy |].
    inversion Hg as [| ? group ? groups0 H1 H2]; subst. inversion Hne; subst. cbn [append_to_pages]. destruct pages as [| page' pages].
    - inversion H2; subst. destruct (Z.leb_spec (hd 0 page + zlength (vlq_bytes v)) PARSER_STACK_PAGE_SIZE) as [Hr | Hr].
      + exists [group ++ [v]]. splits; [| | cbn; now rewrite !app_nil_r].
        * constructor; [now apply page_append | constructor].
        * constructor; [now destruct group | constructor].
      + exists [group; [v]]. splits; [| | cbn; now rewrite !app_nil_r].
        * constructor; [assumption | constructor; [now apply page_new | constructor]].
        * constructor; [assumption | one].
    - destruct (IH ltac:(easy) _ H2 ltac:(assumption)) as (groups' & G1 & G2 & G3). exists (group :: groups'). splits.
      + now constructor.
      + now constructor.
      + cbn [concat]. rewrite G3. now rewrite app_assoc. }
  destruct H as (groups' & G1 & G2 & G3). split; [now exists groups' |].
  intros E. rewrite E in G1. inversion G1; subst. now destruct (concat groups).
Qed.

Lemma append_number_first v : is_u32 v ->
  pages_hold (parser_line_info_append_number [[1]] v) [v] /\ parser_line_info_append_number [[1]] v <> [].
Proof.
  intros Hv. unfold parser_line_info_append_number. destruct (vlq_bytes_length v Hv) as [-> Hl]. cbn [append_to_pages hd firstn tl app].
  destruct (Z.leb_spec (1 + zlength (vlq_bytes v)) PARSER_STACK_PAGE_SIZE) as [_ | H]; [| unfold PARSER_STACK_PAGE_SIZE in H; lia].
  cbn [Z.to_nat Pos.to_nat firstn tl app]. split; [| easy]. exists [[v]]. splits; [| one | reflexivity].
  constructor; [now apply page_new | constructor].
Qed.

(** The iterator is before the numbers *)
Definition iterator_at (it : iterator) (numbers : list Z) : Prop :=
  match iterator_pages it with
  | [] => numbers = []
  | page :: pages => exists passed group others, page_ok page (passed ++ group) /\ iterator_offset it = 1 + zlength (flat_map vlq_bytes passed)
      /\ group <> [] /\ pages_hold pages others /\ numbers = group ++ others
  end.

Lemma iterator_start pages numbers : pages_hold pages numbers -> iterator_at (mk_iterator pages 1) numbers.
Proof.
  intros (groups & Hg & Hne & <-). unfold iterator_at. cbn [iterator_pages iterator_offset].
  destruct Hg as [| page group pages groups H1 H2]; [reflexivity |]. inversion Hne; subst.
  exists [], group, (concat groups). splits; try assumption; try reflexivity. now exists groups.
Qed.

Lemma iterator_end it numbers : iterator_at it numbers -> (iterator_pages it = [] <-> numbers = []).
Proof.
  unfold iterator_at. destruct (iterator_pages it) as [| page pages]; [easy |].
  intros (passed & group & others & _ & _ & Hg & _ & ->). destruct group; [easy |]. easy.
Qed.

Lemma iterator_next it v numbers : iterator_at it (v :: numbers) ->
  exists it', parser_line_info_iterator_get it = Some (v, it') /\ iterator_at it' numbers.
Proof.
  unfold iterator_at at 1, parser_line_info_iterator_get. destruct (iterator_pages it) as [| page pages]; [discriminate |].
  intros (passed & group & others & Hpage & Ho & Hg & Hrest & E). destruct group as [| v' group]; [easy |]. injection E as <- ->.
  pose proof Hpage as (Ep & Hp & Hn). rewrite Ho, Ep. rewrite flat_map_app in *. cbn [flat_map] in *.
  apply Forall_app in Hn as [_ Hn]. inversion Hn; subst.
  set (P := flat_map vlq_bytes passed) in *. set (G := flat_map vlq_bytes group) in *. pose proof (zlength_nonneg P).
  replace (Z.to_nat (1 + zlength P)) with (S (length P)) by (unfold zlength; lia). cbn [skipn]. rewrite skipn_app, skipn_all, Nat.sub_diag.
  cbn [skipn app hd]. rewrite decode_bytes by assumption. eexists. split; [reflexivity |].
  rewrite zlength_cons, !zlength_app in *.
  destruct (Z.ltb_spec (1 + (zlength P + (zlength (vlq_bytes v) + zlength G)) - zlength G) (1 + (zlength P + (zlength (vlq_bytes v) + zlength G)))) as [Hin | Hin];
    unfold iterator_at; cbn [iterator_pages iterator_offset].
  - exists (passed ++ [v]), group, others. splits; try assumption.
    + rewrite <- app_assoc. exact Hpage.
    + rewrite flat_map_app, zlength_app. cbn [flat_map]. rewrite app_nil_r. fold P. lia.
    + intros ->. unfold G in Hin. cbn in Hin. lia.
    + reflexivity.
  - assert (group = []) as ->.
    { destruct group as [| w group]; [reflexivity |]. unfold G in Hin. cbn [flat_map] in Hin. rewrite zlength_app in Hin.
      match goal with H : Forall _ (w :: _) |- _ => inversion H; subst end.
      destruct (vlq_bytes_length w ltac:(assumption)) as [_ ?]. pose proof (zlength_nonneg (flat_map vlq_bytes group)). lia. }
    cbn [app]. destruct Hrest as (groups & Hg' & Hne' & <-). destruct Hg' as [| page' g' pages' gs' Hfst Hsnd]; [reflexivity |]. inversion Hne'; subst.
    exists [], g', (concat gs'). splits; try assumption; try reflexivity. now exists gs'.
Qed.

(** ** The positions that are collected *)

(** A position: its offset, its line and its column *)
Definition entry : Type := Z * Z * Z.
Definition at_offset (e : entry) : Z := fst (fst e).
Definition at_line (e : entry) : Z := snd (fst e).
Definition at_column (e : entry) : Z := snd e.

Definition entry_ok (e : entry) : Prop := 0 <= at_offset e < 2147483648 /\ is_u32 (at_line e) /\ is_u32 (at_column e).

Definition first_position : entry := (0, 1, 1).

(** The call is left out if it has the offset, or the line and the column, of the last one *)
Definition record_call (calls : list entry) (call : entry) : list entry :=
  match calls with
  | _ :: _ => let e := last calls first_position in
      if (at_offset e =? at_offset call) || ((at_line e =? at_line call) && (at_column e =? at_column call)) then calls else calls ++ [call]
  | [] => [call]
  end.

Definition recorded (calls : list entry) : list entry := fold_left record_call calls [].

(** The numbers of the pages, from the position before *)
Definition entry_numbers (prev e : entry) : list Z :=
  (2 * (at_offset e - at_offset prev) + Z.b2z (negb (at_line e =? at_line prev)))
    :: (if at_line e =? at_line prev then [] else [parser_line_info_difference_get (at_line e) (at_line prev)])
    ++ [parser_line_info_difference_get (at_column e) (at_column prev)].

Fixpoint position_numbers (prev : entry) (es : list entry) : list Z :=
  match es with
  | [] => []
  | e :: es => entry_numbers prev e ++ position_numbers e es
  end.

Lemma last_cons {A} (l : list A) : forall x d, last (x :: l) d = last l x.
Proof. induction l as [| y l IH]; intros x d; [reflexivity |]. change (last (x :: y :: l) d) with (last (y :: l) d). now rewrite !IH. Qed.

Lemma position_numbers_snoc es : forall prev e, position_numbers prev (es ++ [e]) = position_numbers prev es ++ entry_numbers (last es prev) e.
Proof.
  induction es as [| e' es IH]; intros prev e; cbn [app position_numbers]; [now rewrite app_nil_r |].
  now rewrite IH, app_assoc, last_cons.
Qed.

Definition pages_for (pages : list (list Z)) (numbers : list Z) : Prop :=
  (pages = [[1]] /\ numbers = []) \/ (pages_hold pages numbers /\ pages <> []).

Lemma append_number_for pages numbers v : pages_for pages numbers -> is_u32 v ->
  pages_for (parser_line_info_append_number pages v) (numbers ++ [v]).
Proof.
  intros [[-> ->] | [H1 H2]] Hv; right; [now apply append_number_first | now apply append_number_ok].
Qed.

Lemma difference_u32 current prev : is_u32 current -> is_u32 prev -> is_u32 (parser_line_info_difference_get current prev).
Proof. intros. now apply difference_roundtrip. Qed.

(** The flag of a changed line, and the distance above it *)
Lemma marked_value d b : 0 <= d < 2147483648 -> (b = 0 \/ b = 1) ->
  (d <<32 1) |' b = 2 * d + b /\ b |' (d <<32 1) = 2 * d + b /\ (2 * d + b) &' 1 = b /\ (2 * d + b) >> 1 = d.
Proof.
  intros Hd Hb. assert (E : (d <<32 1) |' b = 2 * d + b).
  { rewrite Z.shiftl_mul_pow2 by lia. rewrite u32_small by (unfold is_u32; lia). rewrite lor_mul_low by lia. lia. }
  splits; [exact E | now rewrite Z.lor_comm | rewrite (land_ones' _ 1) by lia; Z.div_mod_to_equations; lia |].
  rewrite Z.shiftr_div_pow2 by lia. Z.div_mod_to_equations; lia.
Qed.

Lemma b2z_flag b : Z.b2z b = 0 \/ Z.b2z b = 1.
Proof. destruct b; cbn; lia. Qed.

Lemma snoc_cons {A} (l : list A) x r : l ++ x :: r = (l ++ [x]) ++ r.
Proof. now rewrite <- app_assoc. Qed.

Lemma append_position_ok data numbers e :
  let prev := (data_byte_code_position data, data_line data, data_column data) in
  pages_for (data_pages data) numbers -> entry_ok prev -> entry_ok e -> at_offset prev <= at_offset e ->
  let data' := append_position data (Z.b2z (negb (at_line e =? at_line prev))) (at_offset e) (at_line e) (at_column e) in
  pages_for (data_pages data') (numbers ++ entry_numbers prev e)
  /\ (data_byte_code_position data', data_line data', data_column data') = e.
Proof.
  intros prev Hp (Ho1 & Hl1 & Hc1) (Ho2 & Hl2 & Hc2) Hle. cbv zeta. unfold append_position. cbn [data_pages data_byte_code_position data_line data_column].
  split; [| destruct e as [[? ?] ?]; reflexivity].
  unfold prev, at_offset, at_line, at_column in *. cbn [fst snd] in *. set (pos := data_byte_code_position data) in *.
  rewrite (u32_small (_ - pos)) by (unfold is_u32; lia). set (d := fst (fst e) - pos). assert (Hd : 0 <= d < 2147483648) by (unfold d; lia).
  destruct (marked_value d _ Hd (b2z_flag (negb (snd (fst e) =? data_line data)))) as (_ & -> & Eflag & _). unfold ECMA_LINE_INFO_HAS_LINE. rewrite Eflag.
  unfold entry_numbers, at_offset, at_line, at_column. cbn [fst snd]. fold pos d. destruct (Z.eqb_spec (snd (fst e)) (data_line data)) as [El | El]; cbn [negb Z.b2z Z.eqb app].
  - rewrite snoc_cons. apply append_number_for; [apply append_number_for; [exact Hp |] | now apply difference_u32].
    unfold is_u32. lia.
  - rewrite snoc_cons, (snoc_cons (_ ++ _)). apply append_number_for; [apply append_number_for; [apply append_number_for; [exact Hp |] |] |].
    + unfold is_u32. lia.
    + now apply difference_u32.
    + now apply difference_u32.
Qed.

(** The calls of the parser: the offsets never decrease *)
Fixpoint offsets_from (least : Z) (es : list entry) : Prop :=
  match es with [] => True | e :: es => least <= at_offset e /\ offsets_from (at_offset e) es end.

Definition collects (info : option line_info_data) (es : list entry) : Prop :=
  match info with
  | None => es = []
  | Some data => es <> [] /\ pages_hold (data_pages data) (position_numbers first_position es)
      /\ last es first_position = (data_byte_code_position data, data_line data, data_column data)
  end.

Definition append_call (info : option line_info_data) (call : entry) : option line_info_data :=
  parser_line_info_append info (at_offset call) (at_line call) (at_column call).

Lemma record_call_cons es call : es <> [] -> record_call es call =
  let e := last es first_position in
  if (at_offset e =? at_offset call) || ((at_line e =? at_line call) && (at_column e =? at_column call)) then es else es ++ [call].
Proof. now destruct es. Qed.

Lemma append_call_ok info es call : collects info es -> Forall entry_ok es -> entry_ok call -> at_offset (last es first_position) <= at_offset call ->
  collects (append_call info call) (record_call es call).
Proof.
  intros Hc Hes Hcall Hle. unfold append_call, parser_line_info_append. destruct info as [data |]; cbn [collects] in Hc.
  - destruct Hc as (Hne & Hp & El). rewrite record_call_cons by exact Hne. cbv zeta. rewrite El.
    unfold at_offset at 1, at_line at 1, at_column at 1. cbn [fst snd]. destruct (_ || _); [now repeat split |].
    assert (Hlast : entry_ok (data_byte_code_position data, data_line data, data_column data)).
    { rewrite <- El. destruct (exists_last Hne) as (es' & e & ->). rewrite last_last. apply Forall_app in Hes as [_ He]. now inversion He. }
    rewrite El in Hle.
    assert (Hf : pages_for (data_pages data) (position_numbers first_position es)).
    { right. split; [exact Hp |]. intros E. rewrite E in Hp. destruct Hp as (groups & Hg & _ & En). inversion Hg; subst. destruct es; [easy | discriminate En]. }
    destruct (append_position_ok data _ call Hf Hlast Hcall Hle) as [H1 H2]. cbn [collects]. splits; [now destruct es | | now rewrite last_last].
    rewrite position_numbers_snoc, El. destruct H1 as [[_ H1] | [H1 _]]; [now apply app_eq_nil in H1 as [_ H1] | exact H1].
  - subst es. assert (H0 : entry_ok first_position) by (unfold entry_ok, is_u32; cbn; lia).
    destruct (append_position_ok (mk_data [[1]] 0 1 1) [] call (or_introl (conj eq_refl eq_refl)) H0 Hcall Hle) as [H1 H2].
    cbn [collects record_call last app] in *. cbn [position_numbers]. rewrite app_nil_r. splits; [easy | | now symmetry].
    destruct H1 as [[_ H1] | [H1 _]]; [discriminate H1 | exact H1].
Qed.

Lemma record_call_ok es call : Forall entry_ok es -> entry_ok call -> Forall entry_ok (record_call es call).
Proof.
  intros Hes Hcall. destruct es as [| e es]; [one |]. rewrite record_call_cons by easy. cbv zeta. destruct (_ || _); [assumption | apply Forall_app; split; [assumption | one]].
Qed.

Lemma record_call_last es call : at_offset (last es first_position) <= at_offset call ->
  at_offset (last es first_position) <= at_offset (last (record_call es call) first_position) <= at_offset call.
Proof.
  intros H. destruct es as [| e es]; [cbn in *; lia |]. rewrite record_call_cons by easy. cbv zeta.
  destruct (_ || _); [lia | rewrite last_last; lia].
Qed.

Lemma append_calls_ok calls : forall info es, collects info es -> Forall entry_ok es -> Forall entry_ok calls ->
  offsets_from (at_offset (last es first_position)) calls ->
  collects (fold_left append_call calls info) (fold_left record_call calls es) /\ Forall entry_ok (fold_left record_call calls es).
Proof.
  induction calls as [| call calls IH]; intros info es Hc Hes Hcalls Hsorted; [easy |]. cbn [fold_left]. inversion Hcalls; subst.
  cbn [offsets_from] in Hsorted. destruct Hsorted as [Hle Hsorted]. apply IH; [now apply append_call_ok | now apply record_call_ok | assumption |].
  pose proof (record_call_last es call Hle) as [_ Hl]. destruct calls as [| c calls]; [easy |]. cbn [offsets_from] in *. split; [lia | apply Hsorted].
Qed.

(** ** Reading the positions back *)

(** The offset in the final byte code: each page holds the offsets in it *)
Fixpoint final_offset (code : list (list Z)) (offset : Z) : option Z :=
  match code with
  | [] => if offset =? 0 then Some 0 else None
  | page :: code =>
      if PARSER_CBC_STREAM_PAGE_SIZE <=? offset then
        let? size := relative_offset page (PARSER_CBC_STREAM_PAGE_SIZE - 1) in
        let? rest := final_offset code (offset - PARSER_CBC_STREAM_PAGE_SIZE) in
        Some (size + rest)
      else if offset =? 0 then Some 0 else relative_offset page (offset - 1)
  end.

Lemma relative_range page index r : relative_offset page index = Some r -> 0 <= r < 128.
Proof.
  unfold relative_offset. destruct (nth_error page _) as [b |]; [| discriminate]. intros [= <-]. unfold CBC_LOWER_SEVEN_BIT_MASK.
  rewrite (land_ones' _ 7) by lia. Z.div_mod_to_equations; lia.
Qed.

Lemma skip_more code : forall offset base pages page_offset base' d,
  skip_byte_code_pages code offset base = Some (pages, page_offset, base') -> 0 <= offset -> 0 <= d -> offset + d < B32 ->
  skip_byte_code_pages pages (page_offset +32 d) base' = skip_byte_code_pages code (offset +32 d) base.
Proof.
  induction code as [| page code IH]; intros offset base pages page_offset base' d; cbn [skip_byte_code_pages]; unfold PARSER_CBC_STREAM_PAGE_SIZE in *.
  - destruct (Z.leb_spec (64 - 8) offset); [discriminate |]. intros [= <- <- <-] Ho Hd Hb. reflexivity.
  - destruct (Z.leb_spec (64 - 8) offset) as [H | H].
    + destruct (relative_offset page _) as [r |] eqn:Er; [| discriminate]. intros E Ho Hd Hb. rewrite (u32_small (offset - _)) in E by (unfold is_u32; lia). apply IH with (d := d) in E; [| lia | lia | lia].
      rewrite E, (u32_small (offset + d)), (u32_small (offset - (64 - 8) + d)) by (unfold is_u32; lia).
      destruct (Z.leb_spec (64 - 8) (offset + d)); [| lia]. rewrite (u32_small (offset + d - _)) by (unfold is_u32; lia). f_equal. lia.
    + intros [= <- <- <-] Ho Hd Hb. reflexivity.
Qed.

Lemma skip_final code : forall offset base o, 0 <= offset < B32 -> 0 <= base -> final_offset code offset = Some o -> base + o < B32 ->
  exists pages page_offset base', skip_byte_code_pages code offset base = Some (pages, page_offset, base')
  /\ (if 0 <? page_offset then
        match pages with
        | [] => None
        | page :: _ => let? relative := relative_offset page (page_offset - 1) in Some (base' +32 relative)
        end
      else Some base') = Some (base + o).
Proof.
  induction code as [| page code IH]; intros offset base o Hoff Hbase; cbn [skip_byte_code_pages final_offset]; unfold PARSER_CBC_STREAM_PAGE_SIZE in *.
  - destruct (Z.eqb_spec offset 0) as [-> |]; [| discriminate]. intros [= <-] Ho. exists [], 0, base. split; [reflexivity |]. cbn. f_equal. lia.
  - destruct (Z.leb_spec (64 - 8) offset) as [H | H].
    + destruct (relative_offset page _) as [r |] eqn:Er; [| discriminate]. apply relative_range in Er.
      destruct (final_offset code _) as [rest |] eqn:Ef; [| discriminate]. intros [= <-] Ho.
      assert (Hrest : 0 <= rest).
      { clear -Ef. revert rest Ef. generalize (offset - (64 - 8)). induction code as [| p code IH]; intros n rest; cbn [final_offset];
          [destruct (_ =? _); [intros [= <-]; lia | discriminate] |].
        destruct (_ <=? _).
        - destruct (relative_offset p _) as [q |] eqn:Eq; [| discriminate]. apply relative_range in Eq. destruct (final_offset code _) eqn:E; [| discriminate].
          apply IH in E. intros [= <-]. lia.
        - destruct (_ =? _); [intros [= <-]; lia |]. intros Eq. apply relative_range in Eq. lia. }
      rewrite (u32_small (offset - _)), (u32_small (base + r)) by (unfold is_u32; lia). destruct (IH (offset - (64 - 8)) (base + r) rest ltac:(lia) ltac:(lia) Ef ltac:(lia)) as (pages & po & b' & H1 & H2).
      exists pages, po, b'. split; [exact H1 |]. rewrite H2. f_equal. lia.
    + intros Ef Ho. exists (page :: code), offset, base. split; [reflexivity |].
      destruct (Z.eqb_spec offset 0) as [-> |]; [injection Ef as <-; cbn; f_equal; lia |].
      destruct (Z.ltb_spec 0 offset); [| lia]. rewrite Ef. apply relative_range in Ef. rewrite u32_small by (unfold is_u32; lia). reflexivity.
Qed.

(** The variables after a position *)
Definition positions_at (code : list (list Z)) (prev : entry) (p : positions) : Prop :=
  position p = (at_line prev, at_column prev)
  /\ skip_byte_code_pages code (at_offset prev) 0 = Some (byte_code_pages p, byte_code_page_offset p, byte_code_base p).

Lemma read_position code prev e es it p o : iterator_at it (entry_numbers prev e ++ es) -> positions_at code prev p ->
  entry_ok prev -> entry_ok e -> at_offset prev <= at_offset e -> final_offset code (at_offset e) = Some o -> o < B32 ->
  exists it' p', next_position it p = Some (o, it', p') /\ iterator_at it' es /\ positions_at code e p'
    /\ last_byte_code_offset p' = last_byte_code_offset p /\ prev_position p' = prev_position p.
Proof.
  intros Hit [Hpos Hskip] (Ho1 & Hl1 & Hc1) (Ho2 & Hl2 & Hc2) Hle Hf Ho. unfold entry_numbers in Hit. cbn [app] in Hit.
  destruct (iterator_next _ _ _ Hit) as (it1 & E1 & Hit1). unfold next_position. rewrite E1.
  set (d := at_offset e - at_offset prev) in *.
  destruct (marked_value d _ ltac:(lia) (b2z_flag (negb (at_line e =? at_line prev)))) as (_ & _ & -> & ->).
  assert (Eskip : skip_byte_code_pages (byte_code_pages p) (byte_code_page_offset p +32 d) (byte_code_base p) = skip_byte_code_pages code (at_offset e) 0).
  { rewrite (skip_more _ _ _ _ _ _ d Hskip) by lia. f_equal. rewrite u32_small by (unfold is_u32; lia). lia. }
  destruct (skip_final code (at_offset e) 0 o ltac:(lia) ltac:(lia) Hf ltac:(lia)) as (pages & po & base & Es & Eo).
  destruct (Z.eqb_spec (at_line e) (at_line prev)) as [El | El]; cbn [negb Z.b2z Z.eqb app] in *; rewrite Hpos; cbn [fst snd].
  - destruct (iterator_next _ _ _ Hit1) as (it2 & E2 & Hit2). rewrite E2, Eskip, Es, Eo.
    exists it2. eexists. split; [reflexivity |]. splits; try assumption; try reflexivity.
    unfold positions_at. cbn [position byte_code_pages byte_code_page_offset byte_code_base]. split; [| exact Es].
    destruct (difference_roundtrip (at_column e) (at_column prev) Hc2 Hc1) as [_ ->]. now rewrite El.
  - destruct (iterator_next _ _ _ Hit1) as (it2 & E2 & Hit2). rewrite E2. destruct (iterator_next _ _ _ Hit2) as (it3 & E3 & Hit3). rewrite E3, Eskip, Es, Eo.
    exists it3. eexists. split; [reflexivity |]. splits; try assumption; try reflexivity.
    unfold positions_at. cbn [position byte_code_pages byte_code_page_offset byte_code_base]. split; [| exact Es].
    destruct (difference_roundtrip (at_column e) (at_column prev) Hc2 Hc1) as [_ ->].
    destruct (difference_roundtrip (at_line e) (at_line prev) Hl2 Hl1) as [_ ->]. reflexivity.
Qed.

(** The positions in the final byte code, and those that are not skipped *)
Definition final_entry (code : list (list Z)) (e : entry) : entry :=
  (match final_offset code (at_offset e) with Some o => o | None => 0 end, at_line e, at_column e).

Fixpoint visible (last_offset : Z) (prev : Z * Z) (es : list entry) : list entry :=
  match es with
  | [] => []
  | e :: es =>
      if (at_offset e =? last_offset) || ((at_line e =? fst prev) && (at_column e =? snd prev)) then visible last_offset prev es
      else e :: visible (at_offset e) (at_line e, at_column e) es
  end.

Definition visible_positions (code : list (list Z)) (es : list entry) : list entry :=
  visible 4294967295 (0, 0) (map (final_entry code) es).

Definition has_final_offset (code : list (list Z)) (e : entry) : Prop :=
  exists o, final_offset code (at_offset e) = Some o /\ o < 2147483648.

Definition generate_entry (g : generator) (e : entry) : generator := generate_position g (at_line e) (at_column e) (at_offset e).

Lemma loop_entries code es : forall fuel prev it p g, es <> [] -> (length es <= fuel)%nat ->
  iterator_at it (position_numbers prev es) -> positions_at code prev p -> entry_ok prev -> Forall entry_ok es ->
  offsets_from (at_offset prev) es -> Forall (has_final_offset code) es ->
  generate_loop fuel it p g
  = Some (fold_left generate_entry (visible (last_byte_code_offset p) (prev_position p) (map (final_entry code) es)) g).
Proof.
  induction es as [| e es IH]; intros fuel prev it p g Hne Hfuel Hit Hp Hprev Hes Hsorted Hfinal; [easy |].
  cbn [position_numbers offsets_from] in *. destruct Hsorted as [Hle Hsorted]. inversion Hes; subst. inversion Hfinal as [| ? ? (o & Hf & Ho) Hfinal']; subst.
  destruct fuel as [| fuel]; [cbn in Hfuel; lia |]. cbn [generate_loop].
  destruct (read_position code prev e _ it p o Hit Hp Hprev ltac:(assumption) Hle Hf ltac:(lia)) as (it' & p' & -> & Hit' & Hp' & Elast & Eprev).
  destruct Hp' as [Epos Eskip].
  cbn [map visible]. unfold final_entry at 1 2 3 4 5 6. rewrite Hf. unfold at_offset at 1 2, at_line at 1 2, at_column at 1 2. cbn [fst snd].
  rewrite Epos, Elast, Eprev. cbn [fst snd]. fold (at_line e) (at_column e).
  set (skipped := (o =? last_byte_code_offset p) || _).
  destruct (iterator_pages it') as [| page pages] eqn:Ep.
  - apply (iterator_end it' _ Hit') in Ep. destruct es as [| e' es]; [| destruct e' as [[? ?] ?]; discriminate Ep].
    destruct skipped; reflexivity.
  - assert (Hne' : es <> []).
    { intros ->. pose proof (proj2 (iterator_end it' _ Hit') eq_refl) as E'. rewrite Ep in E'. discriminate. }
    rewrite (IH fuel e it' _ _ Hne' ltac:(cbn in Hfuel; lia) Hit'); try assumption.
    + destruct skipped; cbn [last_byte_code_offset prev_position fold_left]; [now rewrite Elast, Eprev |].
      unfold generate_entry at 3. reflexivity.
    + destruct skipped; (split; [exact Epos || reflexivity | exact Eskip]).
Qed.
