(* ===== verification/LineInfoTheory.v ===== *)
(** * Line info answers the recorded positions

    The generated line info of LineInfoCreate, read with the search of LineInfo. *)
From Stdlib Require Import ZArith List Lia Bool.
From S2P Require Import Prelude LineInfo LineInfoCreate.
Import ListNotations.
#[local] Open Scope Z_scope.
#[local] Open Scope word_scope.
#[local] Open Scope partial_scope.

(** ** The abstract search *)

(** The last position that starts at the offset or before it, or the first one *)
Fixpoint location_from (current : Z * Z) (es : list entry) (offset : Z) : Z * Z :=
  match es with
  | [] => current
  | e :: es => if offset <? at_offset e then current else location_from (at_line e, at_column e) es offset
  end.

Definition location (e : entry) (es : list entry) (offset : Z) : Z * Z := location_from (at_line e, at_column e) es offset.

Lemma location_snoc es e' offset : forall e, Forall (fun e => at_offset e < at_offset e') es ->
  location e (es ++ [e']) offset = if offset <? at_offset e' then location e es offset else (at_line e', at_column e').
Proof.
  unfold location. induction es as [| e1 es IH]; intros e Hes; cbn [app location_from]; [reflexivity |]. inversion Hes; subst.
  destruct (Z.ltb_spec offset (at_offset e1)); [destruct (Z.ltb_spec offset (at_offset e')); [reflexivity | lia] | now apply IH].
Qed.

(** Behind the last position *)
Lemma location_last es offset : forall e, Forall (fun e => at_offset e <= offset) es ->
  location e es offset = (at_line (last es e), at_column (last es e)).
Proof.
  unfold location. induction es as [| e1 es IH]; intros e Hes; [reflexivity |]. inversion Hes; subst. cbn [location_from].
  destruct (Z.ltb_spec offset (at_offset e1)); [lia |]. now rewrite IH, last_cons.
Qed.

(** ** Items *)

Definition small_bytes (v : Z) : list Z := fst (parser_line_info_encode_small v).

Lemma small_bytes_length v : is_u32 v -> parser_line_info_encode_small v = (small_bytes v, zlength (small_bytes v)) /\ 1 <= zlength (small_bytes v) <= 6.
Proof.
  intros Hv. destruct (encode_small_length v Hv) as [H1 H2]. split; [| exact H2]. unfold small_bytes. rewrite <- H1. apply surjective_pairing.
Qed.

Lemma decode_small_bytes v source : is_u32 v -> ecma_line_info_decode_small (small_bytes v ++ source) = Some (v, source).
Proof. apply small_roundtrip. Qed.

Definition position_ok (p : Z * Z) : Prop := is_u32 (fst p) /\ is_u32 (snd p).

Definition changed (cur prev : Z * Z) : bool := negb (fst prev =? fst cur).

Definition line_column_bytes (cur prev : Z * Z) : list Z :=
  (if changed cur prev then small_bytes (parser_line_info_difference_get (fst cur) (fst prev)) else [])
  ++ small_bytes (parser_line_info_difference_get (snd cur) (if changed cur prev then ECMA_LINE_INFO_COLUMN_DEFAULT else snd prev)).

Definition item_bytes (increase : Z) (cur prev : Z * Z) : list Z :=
  small_bytes (2 * increase + Z.b2z (changed cur prev)) ++ line_column_bytes cur prev.

Lemma default_u32 : is_u32 ECMA_LINE_INFO_COLUMN_DEFAULT.
Proof. unfold is_u32, ECMA_LINE_INFO_COLUMN_DEFAULT. lia. Qed.

#[local] Hint Resolve default_u32 difference_u32 : line_info.

Lemma item_read increase cur prev rest : 0 <= increase < 2147483648 -> position_ok cur -> position_ok prev ->
  stream_item (item_bytes increase cur prev ++ rest) (fst prev) (snd prev) = Some (increase, fst cur, snd cur, rest).
Proof.
  intros Hi [Hl Hc] [Hpl Hpc]. unfold stream_item, item_bytes, line_column_bytes.
  destruct (marked_value increase _ Hi (b2z_flag (changed cur prev))) as (_ & _ & Eflag & Eshift).
  rewrite <- !app_assoc, decode_small_bytes by (destruct (b2z_flag (changed cur prev)); unfold is_u32; lia).
  unfold ECMA_LINE_INFO_HAS_LINE. rewrite Eflag, Eshift. destruct (changed cur prev) eqn:Ec; cbn [Z.b2z Z.eqb].
  - rewrite decode_small_bytes, decode_small_bytes by auto with line_info.
    destruct (difference_roundtrip (fst cur) (fst prev) Hl Hpl) as [_ ->].
    destruct (difference_roundtrip (snd cur) _ Hc default_u32) as [_ ->]. reflexivity.
  - cbn [app]. rewrite decode_small_bytes by auto with line_info. destruct (difference_roundtrip (snd cur) (snd prev) Hc Hpc) as [_ ->].
    apply negb_false_iff, Z.eqb_eq in Ec. now rewrite Ec.
Qed.

Lemma line_column_length cur prev : position_ok cur -> position_ok prev -> 1 <= zlength (line_column_bytes cur prev) <= 12.
Proof.
  intros [Hl Hc] [Hpl Hpc]. unfold line_column_bytes. rewrite zlength_app. destruct (changed cur prev).
  - destruct (small_bytes_length (parser_line_info_difference_get (fst cur) (fst prev)) ltac:(auto with line_info)) as [_ ?].
    destruct (small_bytes_length (parser_line_info_difference_get (snd cur) ECMA_LINE_INFO_COLUMN_DEFAULT) ltac:(auto with line_info)) as [_ ?]. lia.
  - destruct (small_bytes_length (parser_line_info_difference_get (snd cur) (snd prev)) ltac:(auto with line_info)) as [_ ?].
    rewrite (@zlength_nil Z). lia.
Qed.

Lemma line_column_item_eq cur prev : position_ok cur -> position_ok prev ->
  line_column_item (changed cur prev) (fst cur) (snd cur) (fst prev) (snd prev) = (line_column_bytes cur prev, zlength (line_column_bytes cur prev)).
Proof.
  intros [Hl Hc] [Hpl Hpc]. unfold line_column_item, line_column_bytes. rewrite zlength_app. destruct (changed cur prev).
  - destruct (small_bytes_length (parser_line_info_difference_get (fst cur) (fst prev)) ltac:(auto with line_info)) as [-> _].
    destruct (small_bytes_length (parser_line_info_difference_get (snd cur) ECMA_LINE_INFO_COLUMN_DEFAULT) ltac:(auto with line_info)) as [-> _]. reflexivity.
  - destruct (small_bytes_length (parser_line_info_difference_get (snd cur) (snd prev)) ltac:(auto with line_info)) as [-> _].
    rewrite (@zlength_nil Z). reflexivity.
Qed.

(** The mark of a changed line survives in the first byte of a short distance *)
Lemma first_byte_mark increase b : 0 <= increase < 127 -> (b = 0 \/ b = 1) ->
  u8 (hd 0 (small_bytes (2 * increase + b)) &' ECMA_LINE_INFO_HAS_LINE) = b.
Proof.
  intros Hi Hb. unfold small_bytes, parser_line_info_encode_small, ECMA_LINE_INFO_ENCODE_TWO_BYTE_MIN.
  destruct (Z.ltb_spec (2 * increase + b) (255 - 1)); [| lia]. cbn [fst hd]. unfold u8 at 2. rewrite Z.mod_small by lia.
  destruct (marked_value increase b ltac:(lia) Hb) as (_ & _ & E & _). unfold ECMA_LINE_INFO_HAS_LINE. rewrite E. unfold u8. rewrite Z.mod_small; lia.
Qed.

(** ** One position *)

Definition current_position (g : generator) : Z * Z := (stream_current_line g, stream_current_column g).
Definition previous_position (g : generator) : Z * Z := (stream_prev_line g, stream_prev_column g).
Definition entry_position (e : entry) : Z * Z := (at_line e, at_column e).

Definition start_bytes (g : generator) (e : entry) : list Z := vlq_bytes (parser_line_info_difference_get (at_line e) (block_prev_line g)).

(** The item goes into the current chunk *)
Definition item_fits (g : generator) (increase : Z) : bool :=
  (stream_value_count g + 1 <? ECMA_LINE_INFO_STREAM_VALUE_COUNT_MAX)
  && (stream_size g + zlength (item_bytes increase (current_position g) (previous_position g)) <=? PARSER_LINE_INFO_STREAM_SIZE_LIMIT).

Lemma generate_first g e : block_size_p g = None ->
  generate_entry g e = start_chunk g (out g) (block_byte_code_offset g) (stream_byte_code_offset g) (at_line e) (at_column e).
Proof. intros E. unfold generate_entry, generate_position. now rewrite E. Qed.

Lemma generate_next g e size_p : block_size_p g = Some size_p -> position_ok (current_position g) -> position_ok (previous_position g) ->
  let increase := at_offset e - stream_byte_code_offset g in 0 <= increase < 2147483648 -> is_u32 (at_offset e) -> is_u32 (stream_byte_code_offset g) ->
  let cur := current_position g in let prev := previous_position g in
  let item := line_column_bytes cur prev in
  let mark := small_bytes (2 * increase + Z.b2z (changed cur prev)) in
  generate_entry g e =
  if item_fits g increase then
    mk_generator (Some size_p) (block_byte_code_offset g) (block_prev_line g) (at_offset e) (at_line e) (at_column e)
      (fst cur) (snd cur) (stream_size g + zlength mark + zlength item) (stream_value_count g + 1) (put (put (out g) mark) item)
  else
    let size := stream_size g + (1 + zlength item) in
    let o := put (put_size (out g) size_p (u8 (size - ECMA_LINE_INFO_STREAM_SIZE_MIN))) [u8 (hd 0 mark &' ECMA_LINE_INFO_HAS_LINE)] in
    let range := vlq_bytes (at_offset e -32 block_byte_code_offset g) in
    start_chunk g (count (put (count (put o item) size) range) (zlength range)) (at_offset e) (at_offset e) (at_line e) (at_column e).
Proof.
  intros Esize Hcur Hprev increase Hi He Hs cur prev item mark. unfold generate_entry, generate_position, item_fits. rewrite Esize.
  rewrite (u32_small (_ - stream_byte_code_offset g)) by (unfold is_u32 in *; lia). fold increase.
  change (negb (stream_prev_line g =? stream_current_line g)) with (changed cur prev).
  destruct (marked_value increase _ Hi (b2z_flag (changed cur prev))) as (-> & _ & Eflag & _).
  destruct (small_bytes_length (2 * increase + Z.b2z (changed cur prev)) ltac:(destruct (b2z_flag (changed cur prev)); unfold is_u32; lia)) as [-> _].
  fold mark. unfold ECMA_LINE_INFO_HAS_LINE in *. rewrite Eflag.
  replace (negb (Z.b2z (changed cur prev) =? 0)) with (changed cur prev) by (now destruct (changed cur prev)).
  change (stream_current_line g) with (fst cur). change (stream_current_column g) with (snd cur).
  change (stream_prev_line g) with (fst prev). change (stream_prev_column g) with (snd prev).
  rewrite line_column_item_eq by assumption. fold item. unfold item_bytes. fold cur prev mark item. rewrite zlength_app.
  replace (stream_size g + (zlength mark + zlength item)) with (stream_size g + zlength mark + zlength item) by lia.
  destruct (vlq_bytes_length _ (u32_range (at_offset e - block_byte_code_offset g))) as [-> _].
  destruct (_ && _); [| reflexivity]. f_equal.
  unfold changed. destruct (Z.eqb_spec (fst prev) (fst cur)) as [E |]; cbn [negb]; [exact E | reflexivity].
Qed.

(** ** The chunk that is being written *)

Fixpoint ascending (least : Z) (es : list entry) : Prop :=
  match es with [] => True | e :: es => least < at_offset e /\ ascending (at_offset e) es end.

Lemma ascending_least es : forall least, ascending least es -> Forall (fun x => least < at_offset x) es.
Proof.
  induction es as [| x es IH]; intros least; [constructor |]. cbn. intros [H1 H2]. constructor; [exact H1 |].
  eapply Forall_impl; [| apply IH, H2]. cbv beta. intros. lia.
Qed.

Lemma ascending_last es : forall least d, ascending least es -> Forall (fun x => at_offset x <= at_offset (last es d)) es.
Proof.
  induction es as [| x es IH]; intros least d; [constructor |]. intros [H1 H2]. rewrite last_cons. constructor; [| now apply (IH (at_offset x) x)].
  destruct es as [| y es]; [cbn; lia |]. apply ascending_least in H2.
  rewrite Forall_forall in H2. apply Z.lt_le_incl, H2. rewrite last_cons. destruct (exists_last (l := y :: es) ltac:(easy)) as (l & z & E).
  rewrite <- (last_cons es y x), E, last_last. apply in_or_app. right. now left.
Qed.

Lemma ascending_snoc es : forall least e' e, least = at_offset e -> ascending least (es ++ [e']) ->
  ascending least es /\ Forall (fun x => at_offset x < at_offset e') es /\ at_offset (last es e) < at_offset e'.
Proof.
  induction es as [| x es IH]; intros least e' e Ee; cbn [app ascending]; [intros [H _]; splits; [exact I | constructor | cbn; lia] |].
  intros [H1 H2]. destruct (IH _ e' x eq_refl H2) as (I1 & I2 & I3). rewrite last_cons. splits; [exact H1 | exact I1 | | exact I3].
  constructor; [| exact I2]. apply ascending_least in H2. apply Forall_app in H2 as [_ H2]. now inversion H2.
Qed.

(** In the second run: the complete chunks and the line of the current one ([pre]),
    a byte for its size, and its items, which describe all positions but the last *)
Record open_chunk (h pre stream : list Z) (e : entry) (es : list entry) (g : generator) : Prop := {
  oc_dst : dst (out g) = Some (h ++ pre ++ 0 :: stream);
  oc_size_p : block_size_p g = Some (zlength h + zlength pre);
  oc_current : current_position g = entry_position (last es e);
  oc_offset : stream_byte_code_offset g = match es with [] => 0 | _ => at_offset (last es e) end;
  oc_size : stream_size g = zlength stream;
  oc_count : 0 <= stream_value_count g < 48 /\ 2 * stream_value_count g <= stream_size g <= PARSER_LINE_INFO_STREAM_SIZE_LIMIT;
  oc_line : is_u32 (block_prev_line g);
  oc_previous : position_ok (previous_position g);
  oc_block : 0 <= block_byte_code_offset g <= stream_byte_code_offset g;
  oc_few : es = [] -> stream_value_count g = 0 /\ stream_size g = 0;
  oc_before : forall rest offset, 0 <= offset < block_byte_code_offset g -> chunks_read (pre ++ rest) 1 0 offset (location e es offset);
  oc_skip : forall rest offset r, block_byte_code_offset g <= offset ->
    chunk_reads rest (block_prev_line g) (block_byte_code_offset g) offset r -> chunks_read (pre ++ rest) 1 0 offset r;
  oc_in : forall rest offset, block_byte_code_offset g <= offset < stream_byte_code_offset g ->
    stream_reads (stream ++ rest) (block_prev_line g) ECMA_LINE_INFO_COLUMN_DEFAULT (block_byte_code_offset g) offset (location e es offset);
  oc_next : forall rest offset r, stream_byte_code_offset g <= offset ->
    stream_reads rest (fst (previous_position g)) (snd (previous_position g)) (stream_byte_code_offset g) offset r ->
    stream_reads (stream ++ rest) (block_prev_line g) ECMA_LINE_INFO_COLUMN_DEFAULT (block_byte_code_offset g) offset r
}.

Lemma start_chunk_eq g o bo so line column written : dst o = Some written -> is_u32 line -> is_u32 (block_prev_line g) ->
  let bytes := vlq_bytes (parser_line_info_difference_get line (block_prev_line g)) in
  start_chunk g o bo so line column
  = mk_generator (Some (zlength written + zlength bytes)) bo line so line column line ECMA_LINE_INFO_COLUMN_DEFAULT 0 0
      (mk_output (Some (written ++ bytes ++ [0])) (total_length o)).
Proof.
  intros E Hl Hp bytes. unfold start_chunk. destruct (vlq_bytes_length (parser_line_info_difference_get line (block_prev_line g)) ltac:(auto with line_info)) as [-> _].
  fold bytes. unfold count, put. rewrite E. cbn [dst total_length]. now rewrite zlength_app, app_assoc.
Qed.

Lemma entry_position_ok e : entry_ok e -> position_ok (entry_position e).
Proof. intros (_ & Hl & Hc). now split. Qed.

Lemma chunk_start pre line prev bo e es :
  is_u32 prev -> is_u32 line ->
  (forall rest offset r, bo <= offset -> chunks_read rest prev bo offset r -> chunks_read (pre ++ rest) 1 0 offset r) ->
  (forall rest offset, 0 <= offset < bo -> chunks_read (pre ++ rest) 1 0 offset (location e es offset)) ->
  let pre' := pre ++ vlq_bytes (parser_line_info_difference_get line prev) in
  (forall rest offset r, bo <= offset -> chunk_reads rest line bo offset r -> chunks_read (pre' ++ rest) 1 0 offset r)
  /\ (forall rest offset, 0 <= offset < bo -> chunks_read (pre' ++ rest) 1 0 offset (location e es offset)).
Proof.
  intros Hp Hl Hskip Hbefore pre'. unfold pre'. split; intros rest offset.
  - intros r Ho H. rewrite <- app_assoc. apply Hskip; [exact Ho |]. now apply chunks_line.
  - intros Ho. rewrite <- app_assoc. now apply Hbefore.
Qed.

Lemma open_first h e : entry_ok e ->
  exists pre, open_chunk h pre [] e [] (generate_entry (new_generator (mk_output (Some h) 0)) e).
Proof.
  intros He. pose proof He as (Ho & Hl & Hc). rewrite generate_first by reflexivity.
  rewrite (start_chunk_eq _ _ _ _ _ _ h) by (reflexivity || exact Hl || (unfold is_u32; cbn; lia)).
  cbn [block_byte_code_offset new_generator stream_byte_code_offset out block_prev_line].
  set (bytes := vlq_bytes _).
  destruct (chunk_start [] (at_line e) 1 0 e [] ltac:(unfold is_u32; lia) Hl) as [Hskip Hbefore];
    [intros rest offset r _ H; exact H | intros rest offset H; lia |]. fold bytes in Hskip, Hbefore. cbn [app] in *.
  exists bytes. constructor; cbn [block_size_p block_byte_code_offset block_prev_line stream_byte_code_offset stream_size stream_value_count out dst
    current_position previous_position stream_current_line stream_current_column stream_prev_line stream_prev_column fst snd]; try assumption; try reflexivity.
  - unfold PARSER_LINE_INFO_STREAM_SIZE_LIMIT. cbn. lia.
  - split; [exact Hl | exact default_u32].
  - lia.
  - now split.
  - intros rest offset H. lia.
  - intros rest offset r _ H. exact H.
Qed.

(** A further position *)
Lemma open_item h pre stream e es g e' size_p : open_chunk h pre stream e es g -> entry_ok e -> Forall entry_ok es -> entry_ok e' ->
  ascending (at_offset e) (es ++ [e']) -> block_size_p g = Some size_p ->
  let increase := at_offset e' - stream_byte_code_offset g in
  let item := item_bytes increase (current_position g) (previous_position g) in
  let g' := mk_generator (Some size_p) (block_byte_code_offset g) (block_prev_line g) (at_offset e') (at_line e') (at_column e')
      (fst (current_position g)) (snd (current_position g)) (stream_size g + zlength item) (stream_value_count g + 1) (put (out g) item) in
  item_fits g increase = true -> open_chunk h pre (stream ++ item) e (es ++ [e']) g'.
Proof.
  intros [] He Hes He' Hasc Esize increase item g' Hfits. unfold g'. destruct (ascending_snoc _ _ _ e eq_refl Hasc) as (Hup & Hall & Hlt).
  assert (Hcur : position_ok (current_position g)).
  { rewrite oc_current0. apply entry_position_ok. destruct (exists_last (l := e :: es) ltac:(easy)) as (l & x & E).
    rewrite <- (last_cons es e e), E, last_last. assert (Hall' : Forall entry_ok (e :: es)) by now constructor. rewrite E in Hall'.
    apply Forall_app in Hall' as [_ H]. now inversion H. }
  assert (Hlast : stream_byte_code_offset g <= at_offset (last es e) /\ 0 <= stream_byte_code_offset g).
  { rewrite oc_offset0. destruct es; [cbn; destruct He; lia |]. split; [lia |]. rewrite oc_offset0 in *. lia. }
  destruct He' as (Ho' & Hl' & Hc'). assert (Hi : 0 < increase < 2147483648) by (unfold increase; lia).
  assert (Hread : forall rest, stream_item (item ++ rest) (fst (previous_position g)) (snd (previous_position g))
    = Some (increase, at_line (last es e), at_column (last es e), rest)).
  { intros rest. unfold item. rewrite item_read by (assumption || lia). now rewrite oc_current0. }
  assert (Hend : stream_byte_code_offset g +32 increase = at_offset e') by (unfold increase; rewrite u32_small; [lia | unfold is_u32; lia]).
  apply andb_prop in Hfits as [Hf1 Hf2]. apply Z.ltb_lt in Hf1. apply Z.leb_le in Hf2. fold item in Hf2.
  assert (Hsz : 2 <= zlength item).
  { unfold item, item_bytes. rewrite zlength_app. pose proof (line_column_length _ _ Hcur oc_previous0).
    destruct (small_bytes_length (2 * increase + Z.b2z (changed (current_position g) (previous_position g)))) as [_ ?];
      [destruct (b2z_flag (changed (current_position g) (previous_position g))); unfold is_u32; lia | lia]. }
  constructor; cbn [block_size_p block_byte_code_offset block_prev_line stream_byte_code_offset stream_size stream_value_count out
    current_position previous_position stream_current_line stream_current_column stream_prev_line stream_prev_column fst snd]; try assumption.
  - unfold put. rewrite oc_dst0. cbn [dst]. now rewrite <- !app_assoc.
  - congruence.
  - now rewrite last_last.
  - rewrite last_last. now destruct es.
  - rewrite zlength_app. lia.
  - unfold ECMA_LINE_INFO_STREAM_VALUE_COUNT_MAX in Hf1. lia.
  - lia.
  - now destruct es.
  - intros rest offset H. rewrite location_snoc by assumption. destruct (Z.ltb_spec offset (at_offset e')); [now apply oc_before0 | lia].
  - intros rest offset H. rewrite location_snoc by assumption. destruct (Z.ltb_spec offset (at_offset e')); [| lia]. rewrite <- app_assoc.
    destruct (Z.ltb_spec offset (stream_byte_code_offset g)); [apply oc_in0; lia |]. apply oc_next0; [assumption |].
    rewrite location_last; [eapply stream_stop; [apply Hread | right; lia] |].
    rewrite oc_offset0 in *. destruct es as [| x es]; [constructor |]. eapply Forall_impl; [| apply (ascending_last _ _ e Hup)]. cbv beta. intros y Hy. lia.
  - intros rest offset r H Hr. rewrite <- app_assoc. apply oc_next0; [lia |]. eapply stream_next; [apply Hread | lia | rewrite Hend; exact H |].
    rewrite Hend. injection oc_current0 as El Ec. rewrite El, Ec in Hr. exact Hr.
Qed.

Lemma put_put o a b : put (put o a) b = put o (a ++ b).
Proof. unfold put. destruct (dst o) as [w |] eqn:E; [cbn; now rewrite app_assoc | now rewrite E]. Qed.

Lemma put_size_at o h pre byte byte' rest : dst o = Some (h ++ pre ++ byte :: rest) ->
  dst (put_size o (zlength h + zlength pre) byte') = Some (h ++ pre ++ byte' :: rest).
Proof.
  intros E. unfold put_size. rewrite E. cbn [dst]. f_equal. replace (Z.to_nat _) with (length (h ++ pre)) by (rewrite length_app; unfold zlength; lia).
  rewrite (app_assoc h pre (byte :: rest)), (app_assoc h pre (byte' :: rest)). f_equal.
  - now rewrite firstn_app, firstn_all, Nat.sub_diag, app_nil_r.
  - f_equal. rewrite skipn_app, skipn_all2 by lia. now rewrite Nat.sub_succ_l, Nat.sub_diag by lia.
Qed.

(** The facts about the current position that the steps share *)
Lemma open_facts h pre stream e es g : open_chunk h pre stream e es g -> entry_ok e -> Forall entry_ok es ->
  entry_ok (last es e) /\ position_ok (current_position g) /\ 0 <= stream_byte_code_offset g <= at_offset (last es e).
Proof.
  intros [] He Hes. assert (Hlast : entry_ok (last es e)).
  { destruct (exists_last (l := e :: es) ltac:(easy)) as (l & x & E). rewrite <- (last_cons es e e), E, last_last.
    assert (H : Forall entry_ok (e :: es)) by now constructor. rewrite E in H. apply Forall_app in H as [_ H]. now inversion H. }
  splits; [exact Hlast | rewrite oc_current0; now apply entry_position_ok | rewrite oc_offset0 | rewrite oc_offset0]; destruct Hlast as [H _]; destruct es; cbn in *; lia.
Qed.

(** The last item of a chunk *)
Lemma last_item_read h pre stream e es g rest offset : open_chunk h pre stream e es g -> entry_ok e -> Forall entry_ok es -> ascending (at_offset e) es ->
  block_byte_code_offset g <= offset ->
  stream_reads (stream ++ item_bytes 0 (current_position g) (previous_position g) ++ rest) (block_prev_line g) ECMA_LINE_INFO_COLUMN_DEFAULT
    (block_byte_code_offset g) offset (location e es offset).
Proof.
  intros Ho He Hes Hup Hb. destruct (open_facts _ _ _ _ _ _ Ho He Hes) as (Hlast & Hcur & Hs). destruct Ho.
  destruct (Z.ltb_spec offset (stream_byte_code_offset g)); [apply oc_in0; lia |]. apply oc_next0; [assumption |].
  rewrite location_last.
  - eapply stream_stop; [rewrite item_read by (assumption || lia); rewrite oc_current0; reflexivity | now left].
  - rewrite oc_offset0 in *. destruct es as [| x es]; [constructor |]. eapply Forall_impl; [| apply (ascending_last _ _ e Hup)]. cbv beta. intros y Hy. lia.
Qed.

(** A position that ends the chunk *)
Lemma open_close h pre stream e es g e' size_p : open_chunk h pre stream e es g -> entry_ok e -> Forall entry_ok es -> entry_ok e' ->
  ascending (at_offset e) (es ++ [e']) -> block_size_p g = Some size_p ->
  let increase := at_offset e' - stream_byte_code_offset g in
  item_fits g increase = false -> increase < 127 ->
  exists pre', open_chunk h pre' [] e (es ++ [e']) (generate_entry g e').
Proof.
  intros Ho He Hes He' Hasc Esize increase Hfits Hnear. destruct (ascending_snoc _ _ _ e eq_refl Hasc) as (Hup & Hall & Hlt).
  destruct (open_facts _ _ _ _ _ _ Ho He Hes) as (Hlast & Hcur & Hs).
  assert (Hitem : forall rest offset, block_byte_code_offset g <= offset -> stream_reads (stream ++ item_bytes 0 (current_position g) (previous_position g) ++ rest)
    (block_prev_line g) ECMA_LINE_INFO_COLUMN_DEFAULT (block_byte_code_offset g) offset (location e es offset)) by (intros; now apply (last_item_read h pre)).
  destruct Ho. destruct He' as (Ho' & Hl' & Hc'). assert (Hi : 0 < increase < 2147483648) by (unfold increase; lia).
  rewrite (generate_next g e' size_p Esize Hcur oc_previous0) by (unfold is_u32; fold increase; lia). fold increase. rewrite Hfits. cbv zeta.
  set (cur := current_position g) in *. set (prev := previous_position g) in *. set (item := line_column_bytes cur prev).
  rewrite first_byte_mark by (lia || apply b2z_flag).
  assert (Elast : item_bytes 0 cur prev = Z.b2z (changed cur prev) :: item).
  { unfold item_bytes. fold item. destruct (changed cur prev); reflexivity. }
  pose proof (line_column_length cur prev Hcur oc_previous0) as Hil. fold item in Hil.
  set (size := stream_size g + (1 + zlength item)).
  assert (Hsize : 1 <= size - ECMA_LINE_INFO_STREAM_SIZE_MIN <= 255).
  { unfold item_fits in Hfits. fold cur prev in Hfits. unfold item_bytes in Hfits. fold item in Hfits. rewrite zlength_app in Hfits.
    destruct (small_bytes_length (2 * increase + Z.b2z (changed cur prev))) as [_ Hm]; [destruct (b2z_flag (changed cur prev)); unfold is_u32; lia |].
    apply andb_false_iff in Hfits. rewrite Z.ltb_ge, Z.leb_gt in Hfits.
    unfold size, PARSER_LINE_INFO_STREAM_SIZE_LIMIT, ECMA_LINE_INFO_STREAM_VALUE_COUNT_MAX, ECMA_LINE_INFO_STREAM_SIZE_MIN, PARSER_LINE_INFO_BUFFER_MAX_SIZE in *.
    unfold ECMA_LINE_INFO_STREAM_VALUE_COUNT_MAX in *. lia. }
  assert (Eu8 : u8 (size - ECMA_LINE_INFO_STREAM_SIZE_MIN) = size - ECMA_LINE_INFO_STREAM_SIZE_MIN) by (unfold u8; rewrite Z.mod_small; lia). rewrite Eu8.
  set (range := at_offset e' -32 block_byte_code_offset g).
  assert (Er : range = at_offset e' - block_byte_code_offset g) by (unfold range; rewrite u32_small; [reflexivity | unfold is_u32; lia]).
  set (written := h ++ (pre ++ (size - ECMA_LINE_INFO_STREAM_SIZE_MIN) :: (stream ++ item_bytes 0 cur prev) ++ vlq_bytes range)).
  assert (Ep : size_p = zlength h + zlength pre) by congruence. rewrite Ep.
  match goal with |- context [start_chunk g ?o _ _ _ _] => assert (Edst : dst o = Some written); [| rewrite (start_chunk_eq g o _ _ _ _ written Edst Hl' oc_line0); set (total := total_length o)] end.
  { pose proof (put_size_at (out g) h pre 0 (size - ECMA_LINE_INFO_STREAM_SIZE_MIN) stream oc_dst0) as E1.
    unfold count, put. rewrite E1. cbn [dst]. unfold written. rewrite Elast. f_equal. repeat (rewrite <- app_assoc; cbn [app]). reflexivity. }
  clearbody total. cbv zeta.
  set (pre1 := pre ++ (size - ECMA_LINE_INFO_STREAM_SIZE_MIN) :: (stream ++ item_bytes 0 cur prev) ++ vlq_bytes range) in *.
  assert (Hzs : zlength (stream ++ item_bytes 0 cur prev) = size).
  { rewrite Elast, zlength_app, zlength_cons. unfold size. lia. }
  assert (Hend : block_byte_code_offset g +32 range = at_offset e') by (rewrite Er, u32_small; [lia | unfold is_u32; lia]).
  assert (Hchunk : forall rest offset r, block_byte_code_offset g <= offset ->
    (offset < at_offset e' -> r = location e es offset) -> (at_offset e' <= offset -> chunks_read rest (block_prev_line g) (at_offset e') offset r) ->
    chunks_read (pre1 ++ rest) 1 0 offset r).
  { intros rest offset r Hb Hin Hout. unfold pre1. rewrite <- app_assoc. cbn [app]. rewrite <- app_assoc. apply oc_skip0; [exact Hb |].
    rewrite <- Hzs. apply chunk_sized; rewrite ?Hzs, ?Hend; [lia | apply u32_range | | exact Hout].
    intros H. rewrite (Hin H), <- app_assoc. now apply Hitem. }
  destruct (chunk_start pre1 (at_line e') (block_prev_line g) (at_offset e') e (es ++ [e']) oc_line0 Hl') as [Hskip Hbefore].
  { intros rest offset r Hge H. apply Hchunk; [lia | lia | now intros _]. }
  { intros rest offset H. rewrite location_snoc by assumption. destruct (Z.ltb_spec offset (at_offset e')); [| lia].
    destruct (Z.ltb_spec offset (block_byte_code_offset g)).
    - unfold pre1. rewrite <- app_assoc. cbn [app]. rewrite <- app_assoc. apply oc_before0. lia.
    - apply Hchunk; [lia | reflexivity | lia]. }
  eexists. constructor; cbn [block_size_p block_byte_code_offset block_prev_line stream_byte_code_offset stream_size stream_value_count out dst
    current_position previous_position stream_current_line stream_current_column stream_prev_line stream_prev_column fst snd].
  - rewrite <- app_assoc. unfold written. fold pre1. now rewrite <- app_assoc.
  - unfold written. fold pre1. now rewrite !zlength_app, Z.add_assoc.
  - now rewrite last_last.
  - rewrite last_last. now destruct es.
  - reflexivity.
  - unfold PARSER_LINE_INFO_STREAM_SIZE_LIMIT. cbn. lia.
  - exact Hl'.
  - split; [exact Hl' | exact default_u32].
  - lia.
  - now destruct es.
  - exact Hbefore.
  - exact Hskip.
  - intros rest offset H. lia.
  - intros rest offset r _ H. exact H.
Qed.

(** ** All positions *)

(** Distances below 127, which one byte holds together with the mark of a changed line *)
Fixpoint near (prev : entry) (es : list entry) : Prop :=
  match es with [] => True | e :: es => at_offset e - at_offset prev < 127 /\ near e es end.

Lemma open_step h pre stream e es g e' : open_chunk h pre stream e es g -> entry_ok e -> Forall entry_ok es -> entry_ok e' ->
  ascending (at_offset e) (es ++ [e']) -> at_offset e' - at_offset (last es e) < 127 ->
  exists pre' stream', open_chunk h pre' stream' e (es ++ [e']) (generate_entry g e').
Proof.
  intros Ho He Hes He' Hasc Hnear. pose proof (oc_size_p _ _ _ _ _ _ Ho) as Esize.
  destruct (open_facts _ _ _ _ _ _ Ho He Hes) as (Hlast & Hcur & Hs). destruct (ascending_snoc _ _ _ e eq_refl Hasc) as (Hup & Hall & Hlt).
  set (increase := at_offset e' - stream_byte_code_offset g). pose proof He' as (Ho' & _).
  assert (Hi : 0 < increase < 2147483648) by (unfold increase; lia).
  destruct (item_fits g increase) eqn:Hfits.
  - exists pre, (stream ++ item_bytes increase (current_position g) (previous_position g)).
    rewrite (generate_next g e' _ Esize Hcur (oc_previous _ _ _ _ _ _ Ho)) by (unfold is_u32; fold increase; lia). fold increase. rewrite Hfits. cbv zeta.
    rewrite put_put. pose proof (open_item h pre stream e es g e' _ Ho He Hes He' Hasc Esize) as H. cbv zeta in H. fold increase in H. specialize (H Hfits).
    unfold item_bytes in H at 2. rewrite zlength_app, Z.add_assoc in H. exact H.
  - destruct (open_close h pre stream e es g e' _ Ho He Hes He' Hasc Esize Hfits) as (pre' & H); [| now exists pre', []].
    fold increase. pose proof (oc_offset _ _ _ _ _ _ Ho) as Es. destruct es as [| x es]; [| unfold increase; cbv beta iota in Es; rewrite Es; lia].
    (* the first item always fits *)
    exfalso. destruct (oc_few _ _ _ _ _ _ Ho eq_refl) as [H1 H2]. unfold item_fits in Hfits. rewrite H1, H2 in Hfits. cbn [Z.add Z.ltb Z.compare] in Hfits.
    apply andb_false_iff in Hfits as [Hfits | Hfits]; [discriminate Hfits |]. apply Z.leb_gt in Hfits. unfold item_bytes in Hfits. rewrite zlength_app in Hfits.
    pose proof (line_column_length _ _ Hcur (oc_previous _ _ _ _ _ _ Ho)).
    destruct (small_bytes_length (2 * increase + Z.b2z (changed (current_position g) (previous_position g)))) as [_ ?];
      [destruct (b2z_flag (changed (current_position g) (previous_position g))); unfold is_u32; lia |].
    unfold PARSER_LINE_INFO_STREAM_SIZE_LIMIT, ECMA_LINE_INFO_STREAM_SIZE_MIN, ECMA_LINE_INFO_STREAM_VALUE_COUNT_MAX, PARSER_LINE_INFO_BUFFER_MAX_SIZE in Hfits. lia.
Qed.

Lemma finish_open h pre stream e es g : open_chunk h pre stream e es g -> entry_ok e -> Forall entry_ok es -> ascending (at_offset e) es ->
  exists o chunks, finish_stream g = Some o /\ dst o = Some (h ++ chunks)
    /\ forall offset, 0 <= offset -> chunks_read chunks 1 0 offset (location e es offset).
Proof.
  intros Ho He Hes Hasc. destruct (open_facts _ _ _ _ _ _ Ho He Hes) as (Hlast & Hcur & Hs).
  pose proof (fun offset => last_item_read _ _ _ _ _ _ (@nil Z) offset Ho He Hes Hasc) as Hitem. destruct Ho.
  unfold finish_stream. rewrite oc_dst0, oc_size_p0.
  change (negb (stream_prev_line g =? stream_current_line g)) with (changed (current_position g) (previous_position g)).
  change (stream_prev_line g) with (fst (previous_position g)). change (stream_prev_column g) with (snd (previous_position g)).
  change (stream_current_line g) with (fst (current_position g)). change (stream_current_column g) with (snd (current_position g)).
  set (cur := current_position g) in *. set (prev := previous_position g) in *. destruct Hcur as [Hl Hc]. destruct oc_previous0 as [Hpl Hpc].
  assert (E : exists o, dst o = Some (h ++ pre ++ 0 :: stream ++ item_bytes 0 cur prev) /\
    (let '(line_bytes, line_size) := if Z.b2z (changed cur prev) =? 0 then ([], 0) else parser_line_info_encode_small (parser_line_info_difference_get (fst cur) (fst prev)) in
     let prev_column := if Z.b2z (changed cur prev) =? 0 then snd prev else ECMA_LINE_INFO_COLUMN_DEFAULT in
     let '(column_bytes, column_size) := parser_line_info_encode_small (parser_line_info_difference_get (snd cur) prev_column) in
     Some (count (put (put (put (put_size (out g) (zlength h + zlength pre) 0) [u8 (Z.b2z (changed cur prev))]) line_bytes) column_bytes) (line_size + column_size))) = Some o).
  { pose proof (put_size_at (out g) h pre 0 0 stream oc_dst0) as E1. unfold item_bytes, line_column_bytes. destruct (changed cur prev) eqn:Ec; cbn [Z.b2z Z.eqb].
    - destruct (small_bytes_length (parser_line_info_difference_get (fst cur) (fst prev)) ltac:(auto with line_info)) as [-> _].
      destruct (small_bytes_length (parser_line_info_difference_get (snd cur) ECMA_LINE_INFO_COLUMN_DEFAULT) ltac:(auto with line_info)) as [-> _].
      eexists. split; [| reflexivity]. rewrite !put_put. unfold count, put. rewrite E1. cbn [dst]. f_equal. repeat (rewrite <- app_assoc; cbn [app]). reflexivity.
    - destruct (small_bytes_length (parser_line_info_difference_get (snd cur) (snd prev)) ltac:(auto with line_info)) as [-> _].
      eexists. split; [| reflexivity]. rewrite !put_put. unfold count, put. rewrite E1. cbn [dst]. f_equal. repeat (rewrite <- app_assoc; cbn [app]). reflexivity. }
  destruct E as (o & E1 & E2). exists o. eexists. split; [exact E2 | split; [exact E1 |]].
  intros offset H0. destruct (Z.ltb_spec offset (block_byte_code_offset g)); [apply oc_before0; lia |]. apply oc_skip0; [assumption |].
  apply chunk_last. rewrite app_nil_r in Hitem. now apply Hitem.
Qed.

(** ** The two runs *)

Definition control (g : generator) : Z * Z * Z * (Z * Z) * (Z * Z) * (Z * Z) :=
  (block_byte_code_offset g, block_prev_line g, stream_byte_code_offset g, current_position g, previous_position g, (stream_size g, stream_value_count g)).

(** The first run has counted what the second one has written, but for the items of
    the current chunk *)
Definition alike (h : list Z) (g1 g2 : generator) : Prop :=
  control g1 = control g2 /\ dst (out g1) = None /\ exists written, dst (out g2) = Some written /\
  match block_size_p g1, block_size_p g2 with
  | None, None => total_length (out g1) = u32 (zlength written - zlength h)
  | Some _, Some p => 0 <= p < zlength written /\ total_length (out g1) = u32 (zlength written - zlength h - stream_size g2)
  | _, _ => False
  end.

Definition written_size (g : generator) : Z := match dst (out g) with Some w => zlength w | None => 0 end.

Lemma put_size_length o p byte w : dst o = Some w -> 0 <= p < zlength w ->
  exists w', dst (put_size o p byte) = Some w' /\ zlength w' = zlength w.
Proof.
  intros E Hp. unfold put_size. rewrite E. cbn [dst]. eexists. split; [reflexivity |].
  unfold zlength in *. rewrite length_app, length_firstn. cbn [length]. rewrite length_skipn. lia.
Qed.

Lemma u32_add_l a b : u32 (u32 a + b) = u32 (a + b).
Proof. unfold u32. now rewrite Z.add_mod_idemp_l by lia. Qed.

(** A chunk starts in both runs *)
Lemma alike_start h g1 g2 o1 o2 bo so line column w : block_prev_line g1 = block_prev_line g2 -> is_u32 (block_prev_line g2) -> is_u32 line ->
  dst o1 = None -> dst o2 = Some w -> total_length o1 = u32 (zlength w - zlength h) ->
  alike h (start_chunk g1 o1 bo so line column) (start_chunk g2 o2 bo so line column)
  /\ written_size (start_chunk g2 o2 bo so line column) <= zlength w + 6.
Proof.
  intros Ep Hp Hl E1 E2 Et. rewrite (start_chunk_eq g2 o2 _ _ _ _ w E2 Hl Hp). cbv zeta.
  set (bytes := vlq_bytes _). destruct (vlq_bytes_length (parser_line_info_difference_get line (block_prev_line g2)) ltac:(auto with line_info)) as [Eb Hb]. fold bytes in Eb, Hb.
  unfold start_chunk. rewrite Ep, Eb. unfold count, put. rewrite E1. cbn [dst]. rewrite E1. cbn [dst]. rewrite E1.
  split; [| unfold written_size; cbn [out dst]; rewrite !zlength_app, zlength_cons, (@zlength_nil Z); lia].
  split; [reflexivity |]. split; [reflexivity |]. exists (w ++ bytes ++ [0]). split; [reflexivity |]. cbn [block_size_p out total_length stream_size].
  rewrite Et, u32_add_l, !zlength_app, zlength_cons, (@zlength_nil Z). pose proof (zlength_nonneg w). split; [lia | f_equal; lia].
Qed.

Lemma alike_step h g1 g2 e : alike h g1 g2 -> position_ok (current_position g2) -> position_ok (previous_position g2) -> is_u32 (block_prev_line g2) ->
  0 <= at_offset e - stream_byte_code_offset g2 < 2147483648 -> entry_ok e -> is_u32 (stream_byte_code_offset g2) ->
  alike h (generate_entry g1 e) (generate_entry g2 e) /\ written_size (generate_entry g2 e) <= written_size g2 + 25.
Proof.
  intros (Ec & E1 & w & E2 & Hsize) Hcur Hprev Hline Hi (Ho & Hl & _) Hs. assert (He : is_u32 (at_offset e)) by (unfold is_u32; lia).
  unfold control in Ec. injection Ec as Ebo Ebl Eso Ecl Ecc Epl Epc Esz Evc.
  assert (Ecur : current_position g1 = current_position g2) by (unfold current_position; congruence).
  assert (Eprev : previous_position g1 = previous_position g2) by (unfold previous_position; congruence).
  assert (Ew : written_size g2 = zlength w) by (unfold written_size; now rewrite E2).
  destruct (block_size_p g1) as [p1 |] eqn:Ep1, (block_size_p g2) as [p2 |] eqn:Ep2; try easy.
  - destruct Hsize as [Hp Ht]. rewrite (generate_next g1 e p1 Ep1), (generate_next g2 e p2 Ep2) by (rewrite ?Ecur, ?Eprev, ?Eso; assumption).
    rewrite Ecur, Eprev, Eso, Ebo, Ebl, Esz, Evc. cbv zeta. unfold item_fits at 1. rewrite Ecur, Eprev, Esz, Evc. fold (item_fits g2 (at_offset e - stream_byte_code_offset g2)).
    set (mark := small_bytes _). set (item := line_column_bytes _ _).
    assert (Hm : 1 <= zlength mark <= 6).
    { apply small_bytes_length. destruct (b2z_flag (changed (current_position g2) (previous_position g2))); unfold is_u32; lia. }
    pose proof (line_column_length _ _ Hcur Hprev) as Hit. fold item in Hit.
    destruct (item_fits _ _).
    + rewrite !put_put. unfold put. rewrite E1, E2. split; [| rewrite Ew; unfold written_size; cbn [out dst]; rewrite !zlength_app; lia].
      split; [reflexivity |]. split; [exact E1 |]. eexists. split; [reflexivity |]. cbn [block_size_p out total_length stream_size].
      rewrite Ht, !zlength_app. split; [lia | f_equal; lia].
    + destruct (vlq_bytes_length _ (u32_range (at_offset e - block_byte_code_offset g2))) as [_ Hr].
      set (range := vlq_bytes _) in *. set (size := stream_size g2 + (1 + zlength item)).
      destruct (put_size_length (out g2) p2 (u8 (size - ECMA_LINE_INFO_STREAM_SIZE_MIN)) w E2 Hp) as (w' & Ew' & Hw').
      match goal with |- alike _ (start_chunk _ ?o1 _ _ _ _) (start_chunk _ ?o2 _ _ _ _) /\ _ =>
        destruct (alike_start h g1 g2 o1 o2 (at_offset e) (at_offset e) (at_line e) (at_column e)
          (w' ++ [u8 (hd 0 mark &' ECMA_LINE_INFO_HAS_LINE)] ++ item ++ range) Ebl Hline Hl) as [H1 H2] end.
      * unfold count, put, put_size. rewrite E1. repeat (cbn [dst]; rewrite ?E1). reflexivity.
      * unfold count, put. rewrite Ew'. cbn [dst]. now rewrite <- !app_assoc.
      * unfold count, put, put_size. repeat (rewrite ?E1; cbn [dst total_length]). rewrite Ht, u32_add_l, <- Z.add_assoc, u32_add_l, !zlength_app, zlength_cons, (@zlength_nil Z), Hw'. f_equal. unfold size. lia.
      * split; [exact H1 |]. eapply Z.le_trans; [exact H2 |]. rewrite !zlength_app, zlength_cons, (@zlength_nil Z), Hw', Ew. lia.
  - rewrite (generate_first g1 e Ep1), (generate_first g2 e Ep2), Ebo, Eso.
    destruct (alike_start h g1 g2 (out g1) (out g2) (block_byte_code_offset g2) (stream_byte_code_offset g2) (at_line e) (at_column e) w Ebl Hline Hl E1 E2 Hsize) as [H1 H2].
    split; [exact H1 | lia].
Qed.

Lemma alike_finish h g1 g2 o : alike h g1 g2 -> block_size_p g2 <> None -> position_ok (current_position g2) -> position_ok (previous_position g2) ->
  finish_stream g2 = Some o -> exists o1 w, finish_stream g1 = Some o1 /\ dst o = Some w /\ total_length o1 = u32 (zlength w - zlength h)
    /\ zlength w <= written_size g2 + 13.
Proof.
  intros (Ec & E1 & w & E2 & Hsize) Hne [Hl Hc] [Hpl Hpc]. unfold control in Ec. injection Ec as Ebo Ebl Eso Ecl Ecc Epl Epc Esz Evc.
  destruct (block_size_p g1) as [p1 |] eqn:Ep1, (block_size_p g2) as [p2 |] eqn:Ep2; try easy. destruct Hsize as [Hp Ht].
  unfold finish_stream. rewrite E1, E2, Ep2, Ecl, Ecc, Epl, Epc, Esz. set (flag := negb _).
  destruct (put_size_length (out g2) p2 0 w E2 Hp) as (w' & Ew' & Hw').
  assert (Ew : written_size g2 = zlength w) by (unfold written_size; now rewrite E2).
  unfold current_position, previous_position in *. cbn [fst snd] in *. destruct flag; cbn [Z.b2z Z.eqb].
  - destruct (small_bytes_length (parser_line_info_difference_get (stream_current_line g2) (stream_prev_line g2)) ltac:(auto with line_info)) as [-> H1].
    destruct (small_bytes_length (parser_line_info_difference_get (stream_current_column g2) ECMA_LINE_INFO_COLUMN_DEFAULT) ltac:(auto with line_info)) as [-> H2].
    intros [= <-]. eexists. eexists. split; [reflexivity |]. unfold count, put. rewrite Ew'. repeat (rewrite ?E1; cbn [dst total_length]). split; [reflexivity |].
    rewrite Ht, u32_add_l, <- Z.add_assoc, u32_add_l, !zlength_app, zlength_cons, (@zlength_nil Z), Hw'. split; [f_equal; lia | lia].
  - destruct (small_bytes_length (parser_line_info_difference_get (stream_current_column g2) (stream_prev_column g2)) ltac:(auto with line_info)) as [-> H2].
    intros [= <-]. eexists. eexists. split; [reflexivity |]. unfold count, put. rewrite Ew'. repeat (rewrite ?E1; cbn [dst total_length]). split; [reflexivity |].
    rewrite Ht, u32_add_l, <- Z.add_assoc, u32_add_l, !zlength_app, zlength_cons, (@zlength_nil Z), Hw'. split; [f_equal; lia | lia].
Qed.

Lemma run_steps h e more : forall es pre stream g g1, open_chunk h pre stream e es g -> alike h g1 g -> entry_ok e -> Forall entry_ok es -> Forall entry_ok more ->
  ascending (at_offset e) (es ++ more) -> near (last es e) more ->
  exists pre' stream', open_chunk h pre' stream' e (es ++ more) (fold_left generate_entry more g)
    /\ alike h (fold_left generate_entry more g1) (fold_left generate_entry more g)
    /\ written_size (fold_left generate_entry more g) <= written_size g + 25 * zlength more.
Proof.
  induction more as [| e' more IH]; intros es pre stream g g1 Ho Ha He Hes Hmore Hasc Hnear.
  { rewrite app_nil_r. exists pre, stream. splits; [exact Ho | exact Ha | cbn; lia]. }
  inversion Hmore; subst. destruct Hnear as [Hn Hnear]. cbn [fold_left].
  assert (Ea : es ++ e' :: more = (es ++ [e']) ++ more) by now rewrite <- app_assoc. rewrite Ea in *.
  assert (Hasc' : ascending (at_offset e) (es ++ [e'])).
  { clear -Hasc. revert Hasc. generalize (at_offset e). generalize (es ++ [e']) as l. induction l as [| x l IH]; intros n H; [exact I |].
    cbn in *. split; [apply H | now apply IH]. }
  destruct (open_step h pre stream e es g e' Ho He Hes ltac:(assumption) Hasc' Hn) as (pre1 & stream1 & Ho1).
  destruct (open_facts _ _ _ _ _ _ Ho He Hes) as (Hlast & Hcur & Hs). destruct (ascending_snoc _ _ _ e eq_refl Hasc') as (_ & _ & Hlt).
  assert (Hok : entry_ok e') by assumption. pose proof Hok as (Hoff & _). pose proof Hlast as (Hoff' & _).
  destruct (alike_step h g1 g e' Ha Hcur (oc_previous _ _ _ _ _ _ Ho) (oc_line _ _ _ _ _ _ Ho)) as [Ha1 Hw1]; [lia | exact Hok | unfold is_u32; lia |].
  destruct (IH _ pre1 stream1 (generate_entry g e') (generate_entry g1 e') Ho1 Ha1 He) as (pre' & stream' & Hopen & Hlike & Hroom); try assumption;
    [apply Forall_app; split; [assumption | constructor; [assumption | constructor]] | now rewrite last_last |].
  exists pre', stream'. splits; [exact Hopen | exact Hlike | rewrite zlength_cons; lia].
Qed.

Lemma run_all h e es : entry_ok e -> Forall entry_ok es -> ascending (at_offset e) es -> near e es ->
  exists o o1 chunks,
    finish_stream (fold_left generate_entry (e :: es) (new_generator (mk_output (Some h) 0))) = Some o /\ dst o = Some (h ++ chunks)
    /\ finish_stream (fold_left generate_entry (e :: es) (new_generator (mk_output None 0))) = Some o1 /\ total_length o1 = u32 (zlength chunks)
    /\ zlength chunks <= 25 * (1 + zlength es) + 13
    /\ forall offset, 0 <= offset -> chunks_read chunks 1 0 offset (location e es offset).
Proof.
  intros He Hes Hasc Hnear. cbn [fold_left]. set (g2 := new_generator (mk_output (Some h) 0)). set (g1 := new_generator (mk_output None 0)).
  destruct (open_first h e He) as (pre & Ho). fold g2 in Ho.
  assert (Ha0 : alike h g1 g2). { split; [reflexivity |]. split; [reflexivity |]. exists h. split; [reflexivity |]. cbn. now rewrite Z.sub_diag. }
  destruct (alike_step h g1 g2 e Ha0) as [Ha Hw]; [split | split | | | exact He | |]; try (unfold is_u32, g2, ECMA_LINE_INFO_COLUMN_DEFAULT; cbn; unfold ECMA_LINE_INFO_COLUMN_DEFAULT; lia);
    [change (stream_byte_code_offset g2) with 0; destruct He as [? _]; lia |].
  destruct (run_steps h e es [] pre [] _ _ Ho Ha He (@Forall_nil _ _) Hes Hasc Hnear) as (pre' & stream' & Ho' & Ha' & Hw'). cbn [app] in Ho'.
  destruct (finish_open _ _ _ _ _ _ Ho' He Hes Hasc) as (o & chunks & E1 & E2 & Hread).
  destruct (open_facts _ _ _ _ _ _ Ho' He Hes) as (_ & Hcur & _).
  destruct (alike_finish h _ _ o Ha' ltac:(rewrite (oc_size_p _ _ _ _ _ _ Ho'); easy) Hcur (oc_previous _ _ _ _ _ _ Ho') E1) as (o1 & w & E3 & E4 & E5 & E6).
  assert (w = h ++ chunks) by congruence. subst w. rewrite zlength_app in *.
  exists o, o1, chunks. splits; try assumption; [rewrite E5; f_equal; lia |].
  assert (written_size g2 = zlength h) by reflexivity. lia.
Qed.

(** ** The whole path *)

(** The calls of the parser, and the line info that is generated at the end *)
Definition line_info_of (calls : list entry) (code : list (list Z)) : option (list Z * Z) :=
  match fold_left append_call calls None with
  | Some data => parser_line_info_generate data code
  | None => None
  end.

Lemma visible_facts es : forall last_offset prev, offsets_from last_offset es -> Forall entry_ok es ->
  ascending last_offset (visible last_offset prev es) /\ Forall entry_ok (visible last_offset prev es).
Proof.
  induction es as [| e es IH]; intros last_offset prev Hs Hes; [split; [exact I | constructor] |]. inversion Hes; subst.
  cbn [offsets_from visible] in *. destruct Hs as [Hle Hs].
  destruct (Z.eqb_spec (at_offset e) last_offset) as [E | E]; cbn [orb].
  - apply IH; [now rewrite <- E | assumption].
  - destruct (_ && _).
    + apply IH; [| assumption]. clear -Hs Hle. destruct es as [| x es]; [exact I |]. cbn in *. split; [lia | apply Hs].
    + destruct (IH (at_offset e) (at_line e, at_column e) Hs ltac:(assumption)) as [H1' H2']. split; [cbn; split; [lia | exact H1'] | now constructor].
Qed.

Lemma entries_fit_pages pages numbers : pages_hold pages numbers -> (length numbers <= length (concat pages))%nat.
Proof.
  intros (groups & Hg & _ & <-). induction Hg as [| page group pages groups (E & _ & Hn) _ IH]; [reflexivity |]. cbn [concat].
  rewrite !length_app. enough (length group <= length page)%nat by lia. rewrite E. cbn [length]. clear -Hn.
  induction Hn as [| v group Hv _ IH]; [cbn; lia |]. cbn [flat_map length]. rewrite length_app. destruct (vlq_bytes_length v Hv) as [_ H]. unfold zlength in H. lia.
Qed.

Lemma numbers_entries es : forall prev, (length es <= length (position_numbers prev es))%nat.
Proof. induction es as [| e es IH]; intros prev; [reflexivity |]. cbn [position_numbers]. rewrite length_app. specialize (IH e). unfold entry_numbers. cbn [length]. lia. Qed.

Lemma record_nonempty calls : forall es, es <> [] -> fold_left record_call calls es <> [].
Proof.
  induction calls as [| c calls IH]; intros es H; [exact H |]. cbn [fold_left]. apply IH. rewrite record_call_cons by exact H. cbv zeta.
  destruct (_ || _); [exact H | now destruct es].
Qed.

Lemma record_length calls : forall es, zlength (fold_left record_call calls es) <= zlength es + zlength calls.
Proof.
  induction calls as [| c calls IH]; intros es; cbn [fold_left]; [cbn; lia |]. eapply Z.le_trans; [apply IH |]. rewrite zlength_cons.
  enough (zlength (record_call es c) <= zlength es + 1) by lia. destruct es as [| e es]; [cbn; lia |]. rewrite record_call_cons by easy. cbv zeta.
  destruct (_ || _); [lia | rewrite zlength_app; cbn; lia].
Qed.

Lemma visible_length es : forall o p, zlength (visible o p es) <= zlength es.
Proof.
  induction es as [| e es IH]; intros o p; [cbn; lia |]. cbn [visible]. rewrite zlength_cons. destruct (_ || _); [specialize (IH o p); lia |].
  rewrite zlength_cons. specialize (IH (at_offset e) (at_line e, at_column e)). lia.
Qed.

(** What the parser and the post processing of the byte code guarantee: offsets that
    never decrease, before and after the post processing, lines counted from 1, and
    positions that are less than 127 bytes of byte code apart *)
Record line_info_input (code : list (list Z)) (calls : list entry) : Prop := {
  some_call : calls <> [];
  few_calls : zlength calls < 67108864;
  calls_ok : Forall entry_ok calls;
  lines_from_1 : Forall (fun e => 1 <= at_line e) calls;
  calls_ordered : offsets_from 0 calls;
  calls_final : Forall (has_final_offset code) (recorded calls);
  final_ordered : offsets_from 0 (map (final_entry code) (recorded calls));
  positions_near : match visible_positions code (recorded calls) with e :: es => near e es | [] => True end
}.

Lemma offsets_snoc es c : forall d, offsets_from (at_offset d) es -> at_offset (last es d) <= at_offset c -> offsets_from (at_offset d) (es ++ [c]).
Proof.
  induction es as [| x es IH]; intros d Hes Hle; cbn [app offsets_from] in *; [now split |].
  rewrite last_cons in Hle. split; [apply Hes | now apply IH].
Qed.

Lemma recorded_offsets calls : forall es, offsets_from 0 es -> offsets_from (at_offset (last es first_position)) calls ->
  offsets_from 0 (fold_left record_call calls es).
Proof.
  induction calls as [| c calls IH]; intros es Hes Hc; [exact Hes |]. cbn [fold_left offsets_from] in *. destruct Hc as [Hle Hc].
  pose proof (record_call_last es c Hle) as Hlast. apply IH.
  - destruct es as [| e es]; [cbn in *; now split |]. rewrite record_call_cons by easy. cbv zeta. destruct (_ || _); [exact Hes |].
    now apply (offsets_snoc (e :: es) c first_position).
  - destruct calls as [| c' calls]; [exact I |]. cbn [offsets_from] in *. split; [lia | apply Hc].
Qed.

Lemma record_incl calls P : forall es, Forall P es -> Forall P calls -> Forall P (fold_left record_call calls es).
Proof.
  induction calls as [| c calls IH]; intros es Hes Hc; [exact Hes |]. inversion Hc; subst. cbn [fold_left]. apply IH; [| assumption].
  destruct es as [| e es]; [cbn [record_call]; constructor; [assumption | constructor] |]. rewrite record_call_cons by easy. cbv zeta.
  destruct (_ || _); [exact Hes | apply Forall_app; split; [exact Hes | constructor; [assumption | constructor]]].
Qed.

Lemma final_entry_ok code e : entry_ok e -> has_final_offset code e -> 0 <= at_offset (final_entry code e) -> entry_ok (final_entry code e).
Proof.
  intros (_ & Hl & Hc) (o & Ho & Hb) H. assert (E : final_entry code e = (o, at_line e, at_column e)) by (unfold final_entry; now rewrite Ho).
  rewrite E in *. split; [exact (conj H Hb) | now split].
Qed.

(** The first position is never skipped *)
Lemma visible_first code calls : line_info_input code calls ->
  exists e es, visible_positions code (recorded calls) = e :: es /\ entry_ok e /\ Forall entry_ok es /\ ascending (at_offset e) es /\ near e es
    /\ zlength es < 67108864.
Proof.
  intros []. unfold visible_positions in *. assert (Hne : recorded calls <> []).
  { unfold recorded. destruct calls as [| c calls]; [easy |]. cbn [fold_left]. apply record_nonempty. discriminate. }
  pose proof (record_incl calls entry_ok [] (@Forall_nil _ _) calls_ok0) as Hok. pose proof (record_incl calls _ [] (@Forall_nil _ _) lines_from_2) as Hlines.
  fold (recorded calls) in Hok, Hlines. pose proof (record_length calls []) as Hlen. fold (recorded calls) in Hlen. rewrite (@zlength_nil entry) in Hlen.
  destruct (recorded calls) as [| e es]; [easy |]. cbn [map visible] in *. inversion Hok; subst. inversion Hlines; subst. inversion calls_final0; subst.
  cbn [offsets_from] in final_ordered0. destruct final_ordered0 as [H0 Hs].
  assert (He : entry_ok (final_entry code e)) by now apply final_entry_ok.
  assert (E1 : (at_offset (final_entry code e) =? 4294967295) = false) by (apply Z.eqb_neq; destruct He; lia).
  assert (E2 : (at_line (final_entry code e) =? 0) = false) by (apply Z.eqb_neq; unfold final_entry, at_line in *; cbn in *; lia).
  cbn [fst snd] in *. rewrite E1, E2 in *. cbn [orb andb] in *. exists (final_entry code e). eexists. split; [reflexivity |].
  assert (Hes : Forall entry_ok (map (final_entry code) es)).
  { clear -Hs H0 H2 H6. revert Hs H0. generalize (final_entry code e) as d. induction es as [| x es IH]; intros d Hs H0; [constructor |].
    inversion H2; subst. inversion H6; subst. cbn [map offsets_from] in *. destruct Hs as [Hle Hs].
    constructor; [apply final_entry_ok; (assumption || lia) | apply (IH ltac:(assumption) ltac:(assumption) _ Hs); lia]. }
  destruct (visible_facts (map (final_entry code) es) _ (at_line (final_entry code e), at_column (final_entry code e)) Hs Hes) as [Hv1 Hv2].
  splits; try assumption. eapply Z.le_lt_trans; [apply visible_length |]. unfold zlength in *. rewrite length_map. cbn [length] in Hlen. lia.
Qed.

(** The loop over the pages *)
Lemma generate_run_eq calls code data o : line_info_input code calls -> fold_left append_call calls None = Some data ->
  generate_run (data_pages data) code o
  = finish_stream (fold_left generate_entry (visible_positions code (recorded calls)) (new_generator o)).
Proof.
  intros [] E. destruct (append_calls_ok calls None [] eq_refl (@Forall_nil _ _) calls_ok0 calls_ordered0) as [Hc Hok].
  rewrite E in Hc. destruct Hc as (Hne & Hpages & _). fold (recorded calls) in *. unfold generate_run.
  assert (H0 : entry_ok first_position) by (unfold entry_ok, is_u32; cbn; lia).
  rewrite (loop_entries code (recorded calls) _ first_position _ (mk_positions code 0 0 4294967295 (0, 0) (1, 1)) _ Hne); try assumption.
  - reflexivity.
  - pose proof (entries_fit_pages _ _ Hpages). pose proof (numbers_entries (recorded calls) first_position). lia.
  - now apply iterator_start.
  - split; [reflexivity |]. cbn. unfold PARSER_CBC_STREAM_PAGE_SIZE. now destruct code.
  - now apply (recorded_offsets calls []).
Qed.

Lemma line_info_generated calls code : line_info_input code calls ->
  exists e es bytes, visible_positions code (recorded calls) = e :: es
    /\ line_info_of calls code = Some (bytes, zlength bytes) /\ ecma_line_info_free_size bytes = Some (zlength bytes)
    /\ forall offset, is_u32 offset -> ecma_line_info_get bytes offset = Some (location e es offset).
Proof.
  intros Hin. destruct (visible_first code calls Hin) as (e & es & Ev & He & Hes & Hasc & Hnear & Hfew).
  unfold line_info_of. pose proof Hin as [].
  destruct (append_calls_ok calls None [] eq_refl (@Forall_nil _ _) calls_ok0 calls_ordered0) as [Hc _].
  destruct (fold_left append_call calls None) as [data |] eqn:E; [| cbn in Hc; destruct calls as [| c cs]; [now destruct (some_call0 eq_refl) | exfalso; apply (record_nonempty cs (record_call [] c)) in Hc; [exact Hc | discriminate]]].
  unfold parser_line_info_generate. rewrite (generate_run_eq calls code data _ Hin E), Ev.
  destruct (run_all [] e es He Hes Hasc Hnear) as (_ & o1 & _ & _ & _ & E1 & _). rewrite E1.
  set (h := vlq_bytes (total_length o1)).
  destruct (run_all h e es He Hes Hasc Hnear) as (o & o1' & chunks & E2 & Edst & E1' & Et & Hsize & Hread).
  assert (o1' = o1) by congruence. subst o1'. pose proof (zlength_nonneg chunks).
  assert (Htotal : total_length o1 = zlength chunks) by (rewrite Et; apply u32_small; unfold is_u32; lia).
  assert (Hu : is_u32 (total_length o1)) by (rewrite Htotal; unfold is_u32; lia).
  destruct (vlq_bytes_length (total_length o1) Hu) as [Eh Hh]. rewrite Eh. change (vlq_bytes (total_length o1)) with h in Hh |- *. cbv beta iota. rewrite (generate_run_eq calls code data _ Hin E), Ev, E2, Edst.
  exists e, es, (h ++ chunks). splits.
  - reflexivity.
  - rewrite zlength_app, Htotal. do 2 f_equal. lia.
  - unfold ecma_line_info_free_size, h. rewrite decode_bytes by exact Hu. fold h. rewrite zlength_app, Htotal.
    rewrite (u32_small (_ - _)) by (unfold is_u32; lia). rewrite u32_small by (unfold is_u32; lia). f_equal. lia.
  - intros offset Ho. unfold h. apply get_reads; [exact Hu |]. apply Hread. apply Ho.
Qed.

(** ** Properties *)

(** C21: line info: for all positions the parser records (fewer than 2^26, with lines
    counted from 1, offsets that the final byte code keeps, that never decrease, in it or
    before, and that are less than 127 bytes apart; for farther positions see
    [far_positions_lose_a_line]), both runs of parser_line_info_generate end and agree on the size of the data, which is
    the size that ecma_line_info_free gives back, and for every byte code offset
    ecma_line_info_get returns the line and the column of the last recorded position
    at or before the offset (the first position below all of them). *)
Theorem line_info_answers_positions calls code : line_info_input code calls ->
  exists e es bytes, visible_positions code (recorded calls) = e :: es
    /\ line_info_of calls code = Some (bytes, zlength bytes) /\ ecma_line_info_free_size bytes = Some (zlength bytes)
    /\ forall offset, is_u32 offset -> ecma_line_info_get bytes offset = Some (location e es offset).
Proof. exact (line_info_generated calls code). Qed.

(** Byte code that the post processing leaves as it is, and two positions *)
Definition example_code : list (list Z) := repeat (map Z.of_nat (seq 1 56)) 20.
Definition example_calls : list entry := [(0, 1, 5); (3, 2, 1); (60, 2, 200)].

Lemma line_info_answers_witness : exists bytes, line_info_of example_calls example_code = Some (bytes, zlength bytes)
  /\ ecma_line_info_get bytes 2 = Some (1, 5) /\ ecma_line_info_get bytes 59 = Some (2, 1) /\ ecma_line_info_get bytes 1000 = Some (2, 200).
Proof.
  assert (Hin : line_info_input example_code example_calls).
  { assert (E : recorded example_calls = example_calls) by (vm_compute; reflexivity). constructor; rewrite ?E.
    - discriminate.
    - now vm_compute.
    - repeat (constructor; [unfold entry_ok, is_u32; cbn; lia |]). constructor.
    - repeat (constructor; [cbn; lia |]). constructor.
    - cbn. lia.
    - constructor; [exists 0; now vm_compute |]. constructor; [exists 3; now vm_compute |]. constructor; [exists 60; now vm_compute | constructor].
    - vm_compute. repeat split; discriminate.
    - vm_compute. repeat split; discriminate. }
  destruct (line_info_answers_positions example_calls example_code Hin) as (e & es & bytes & Ev & E & _ & H).
  vm_compute in Ev. injection Ev as <- <-.
  exists bytes. split; [exact E |]. rewrite !H by (unfold is_u32; lia). splits; reflexivity.
Defined.

(** The mark of a changed line is taken from the first byte of the end offset, which
    is a prefix if the end offset is 127 or more: 48 positions one byte apart, and
    the next 200 bytes after them.  At offset 47 the answer is (47, 6) instead of
    (48, 5). *)
Lemma far_positions_lose_a_line :
  let calls := map (fun k => (Z.of_nat k, 1 + Z.of_nat k, 5)) (seq 0 48) ++ [(247, 100, 7)] in
  match line_info_of calls example_code with
  | Some (bytes, _) => ecma_line_info_get bytes 47 = Some (47, 6)
  | None => False
  end
  /\ location (0, 1, 5) (tl calls) 47 = (48, 5).
Proof. now vm_compute. Qed.
