(* ===== verification/Escapes.v ===== *)
(** * Escapes in strings: the routines of src/jjs-core/ecma/builtin-objects/ecma-builtin-global.c

    encodeURI, encodeURIComponent, decodeURI, decodeURIComponent, escape and
    unescape.  Each routine is a loop over the bytes of its argument that appends to
    a string builder; the body of the loop is a step function from the rest of the
    input to what is appended, and the driver of the loops is shared. *)
From Stdlib Require Import ZArith Lia Bool List.
From stdpp Require Import base gmap list.
From S2P Require Import Prelude LitChars LitDigits LitStrings JmemHeap JmemPointers Values BlockHeap MagicStrings MagicTable StringData Decimal.
From S2P Require Import StringRepr StringAccess Ownership Counting Release Strings StringTheory StringJoin StringCut StringInput StringBuilder.
Import ListNotations.
#[local] Open Scope Z_scope.

(** ** Characters and bytes *)

(** ecma_raise_uri_error, by its message *)
Inductive uri_error :=
| ECMA_ERR_INVALID_HEXADECIMAL_VALUE
| ECMA_ERR_INVALID_UTF8_CHARACTER
| ECMA_ERR_INVALID_UTF8_STRING
| ECMA_ERR_INVALID_UTF8_CODEPOINT
| ECMA_ERR_UNICODE_SURROGATE_PAIR_MISSING.

Definition ecma_builtin_global_object_character_is_in (character : Z) (bitset : list Z) : bool :=
  negb (Z.land (nth (Z.to_nat (Z.shiftr character 3)) bitset 0) (Z.shiftl 1 (Z.land character 7)) =? 0).

Definition unescaped_uri_set : list Z := [0; 0; 0; 0; 218; 255; 255; 175; 255; 255; 255; 135; 254; 255; 255; 71].
Definition unescaped_uri_component_set : list Z := [0; 0; 0; 0; 130; 103; 255; 3; 254; 255; 255; 135; 254; 255; 255; 71].
Definition ecma_escape_set : list Z := [0; 0; 0; 0; 0; 236; 255; 3; 255; 255; 255; 135; 254; 255; 255; 7].

Definition URI_ENCODED_BYTE_SIZE : Z := 3.
Definition ECMA_ESCAPE_MAXIMUM_BYTE_VALUE : Z := 255.

Definition hex_char (hex_digit : Z) : Z := u8 (if 9 <? hex_digit then hex_digit + (65 - 10) else hex_digit + 48).

Definition ecma_builtin_global_object_byte_to_hex (byte : Z) : list Z :=
  [37; hex_char (u16 (Z.shiftr byte 4)); hex_char (u8 (Z.land byte 15))].

(** ** Steps *)

(** What is appended, and the rest of the input *)
Inductive step := APPEND (appended : list part) (rest : list Z) | RAISE (error : uri_error) | READ_FAULT.

Definition encode_uri_step (unescaped_uri_bitset : list Z) (input : list Z) : step :=
  match lit_read_code_unit_from_cesu8 input with
  | None => READ_FAULT
  | Some (size, ch) =>
      let input := advance size input in
      let encode cp input :=
        let octets := lit_code_point_to_utf8 cp in
        match octets with
        | [octet] =>
            if ecma_builtin_global_object_character_is_in octet unescaped_uri_bitset then APPEND [BYTE octet] input
            else APPEND [RAW (ecma_builtin_global_object_byte_to_hex octet)] input
        | _ => APPEND (map (fun octet => RAW (ecma_builtin_global_object_byte_to_hex octet)) octets) input
        end in
      if lit_is_code_point_utf16_low_surrogate ch then RAISE ECMA_ERR_UNICODE_SURROGATE_PAIR_MISSING
      else if lit_is_code_point_utf16_high_surrogate ch then
        match input with
        | [] => RAISE ECMA_ERR_UNICODE_SURROGATE_PAIR_MISSING
        | _ =>
            match lit_read_code_unit_from_cesu8 input with
            | None => READ_FAULT
            | Some (read_size, next_ch) =>
                if lit_is_code_point_utf16_low_surrogate next_ch
                then encode (lit_convert_surrogate_pair_to_code_point ch next_ch) (advance read_size input)
                else RAISE ECMA_ERR_UNICODE_SURROGATE_PAIR_MISSING
            end
        end
      else encode ch input
  end.

(** The continuation bytes of a UTF-8 sequence, each of them escaped; [None] when
    there are none ([is_valid] is false) *)
Fixpoint decode_octets (count : nat) (input octets : list Z) : option (list Z * list Z) :=
  match count with
  | O => Some (octets, input)
  | S count =>
      match input with
      | [] => None
      | c :: rest =>
          if negb (c =? 37) then None
          else
            match lit_char_hex_lookup rest 2 with
            | None => None
            | Some hex_value =>
                if (hex_value =? UINT32_MAX) || negb (Z.land hex_value 192 =? 128) then None
                else decode_octets count (advance URI_ENCODED_BYTE_SIZE input) (octets ++ [u8 hex_value])
            end
      end
  end.

Definition decode_uri_step (reserved_uri_bitset : list Z) (input : list Z) : step :=
  match input with
  | [] => READ_FAULT
  | c :: rest =>
      if negb (c =? 37) then APPEND [BYTE c] rest
      else
        match lit_char_hex_lookup rest 2 with
        | None => READ_FAULT
        | Some hex_value =>
            if hex_value =? UINT32_MAX then RAISE ECMA_ERR_INVALID_HEXADECIMAL_VALUE
            else
              let decoded_byte := u16 hex_value in
              let input' := advance URI_ENCODED_BYTE_SIZE input in
              if decoded_byte <=? LIT_UTF8_1_BYTE_CODE_POINT_MAX then
                if ecma_builtin_global_object_character_is_in decoded_byte reserved_uri_bitset
                   && negb (ecma_builtin_global_object_character_is_in decoded_byte unescaped_uri_component_set)
                then APPEND [CHAR 37] rest
                else APPEND [BYTE (u8 decoded_byte)] input'
              else
                let decode count :=
                  match decode_octets (count - 1) input' [u8 decoded_byte] with
                  | None => RAISE ECMA_ERR_INVALID_UTF8_STRING
                  | Some (octets, input') =>
                      if negb (lit_is_valid_utf8_string octets true) then RAISE ECMA_ERR_INVALID_UTF8_STRING
                      else
                        match lit_read_code_point_from_utf8 octets with
                        | None => READ_FAULT
                        | Some (_, cp) =>
                            if lit_is_code_point_utf16_high_surrogate cp || lit_is_code_point_utf16_low_surrogate cp
                            then RAISE ECMA_ERR_INVALID_UTF8_CODEPOINT
                            else APPEND [RAW (lit_code_point_to_cesu8 cp)] input'
                        end
                  end in
                if Z.land decoded_byte 224 =? 192 then decode 2%nat
                else if Z.land decoded_byte 240 =? 224 then decode 3%nat
                else if Z.land decoded_byte 248 =? 240 then decode 4%nat
                else RAISE ECMA_ERR_INVALID_UTF8_CHARACTER
        end
  end.

Definition escape_step (input : list Z) : step :=
  match lit_read_code_unit_from_cesu8 input with
  | None => READ_FAULT
  | Some (size, chr) =>
      let input := advance size input in
      if chr <=? LIT_UTF8_1_BYTE_CODE_POINT_MAX then
        if ecma_builtin_global_object_character_is_in chr ecma_escape_set then APPEND [CHAR chr] input
        else APPEND [RAW (ecma_builtin_global_object_byte_to_hex chr)] input
      else if ECMA_ESCAPE_MAXIMUM_BYTE_VALUE <? chr then
        APPEND [CHAR 37; CHAR 117; RAW (skipn 1 (ecma_builtin_global_object_byte_to_hex (Z.shiftr chr 8)));
                RAW (skipn 1 (ecma_builtin_global_object_byte_to_hex (Z.land chr 255)))] input
      else APPEND [RAW (ecma_builtin_global_object_byte_to_hex chr)] input
  end.

(** The value of the digits and the number of characters that were processed, 0 for
    no escape; [None] is a read outside of the buffer *)
Fixpoint resolve_digits (digits : nat) (buffer : list Z) (unescaped_chr : Z) : option (option Z) :=
  match digits with
  | O => Some (Some unescaped_chr)
  | S digits =>
      match buffer with
      | [] => None
      | current_char :: buffer =>
          if negb (lit_char_is_hex_digit current_char) then Some None
          else resolve_digits digits buffer (u16 (u16 (Z.shiftl unescaped_chr 4) + u16 (lit_char_hex_to_int current_char)))
      end
  end.

Definition ecma_builtin_global_object_unescape_resolve_escape (buffer : list Z) (unicode_sequence : bool) (chr : Z) : option (Z * Z) :=
  match resolve_digits (if unicode_sequence then 4 else 2) (if unicode_sequence then skipn 1 buffer else buffer) 0 with
  | None => None
  | Some None => Some (0, chr)
  | Some (Some unescaped_chr) => Some (if unicode_sequence then 5 else 2, unescaped_chr)
  end.

Definition unescape_step (input : list Z) : step :=
  match lit_read_code_unit_from_cesu8 input with
  | None => READ_FAULT
  | Some (size, chr) =>
      let input := advance size input in
      let resolved :=
        if chr =? 37 then
          if (5 <=? zlength input) && (nth 0 input 0 =? 117) then ecma_builtin_global_object_unescape_resolve_escape input true chr
          else if 2 <=? zlength input then ecma_builtin_global_object_unescape_resolve_escape input false chr
          else Some (0, chr)
        else Some (0, chr) in
      match resolved with
      | None => READ_FAULT
      | Some (size, chr) => APPEND [CHAR chr] (advance size input)
      end
  end.

(** ** Routines *)

Section Routines.
Context {BH : BlockHeap} (T : magic_tables).

(** The loop, with the builder or the error; every step takes a byte of the input at
    least *)
Fixpoint escape_loop (body : list Z -> step) (fuel : nat) (header_p : Z) (input : list Z) : W content (uri_error + Z) :=
  match input with
  | [] => mret (inr header_p)
  | _ =>
      match fuel with
      | O => fault
      | S fuel =>
          match body input with
          | READ_FAULT => fault
          | RAISE error => _ ← ecma_stringbuilder_destroy header_p; mret (inl error)
          | APPEND appended rest => header_p ← append_parts T header_p appended; escape_loop body fuel header_p rest
          end
      end
  end.

Definition escape_routine (body : list Z -> step) (input : list Z) : W content (uri_error + Z) :=
  header_p ← ecma_stringbuilder_create;
  result ← escape_loop body (length input) header_p input;
  match result with
  | inl error => mret (inl error)
  | inr header_p => string_p ← ecma_stringbuilder_finalize T header_p; mret (inr string_p)
  end.

Definition ecma_builtin_global_object_decode_uri_helper (input reserved_uri_bitset : list Z) : W content (uri_error + Z) :=
  escape_routine (decode_uri_step reserved_uri_bitset) input.

Definition ecma_builtin_global_object_encode_uri_helper (input unescaped_uri_bitset : list Z) : W content (uri_error + Z) :=
  escape_routine (encode_uri_step unescaped_uri_bitset) input.

Definition ecma_builtin_global_object_escape (input : list Z) : W content (uri_error + Z) := escape_routine escape_step input.

Definition ecma_builtin_global_object_unescape (input : list Z) : W content (uri_error + Z) :=
  match input with
  | [] => mret (inr (ecma_get_magic_string LIT_MAGIC_STRING__EMPTY))
  | _ => escape_routine unescape_step input
  end.
End Routines.

(** ** Runs of the loops *)

(** The text of what the steps append *)
Definition part_text (x : part) : list Z :=
  match x with
  | RAW data => data
  | BYTE byte => [byte]
  | CHAR c => lit_code_unit_to_utf8 c
  | _ => []
  end.

Definition plain_part (x : part) : Prop := match x with RAW _ | BYTE _ => True | CHAR c => is_u16 c | _ => False end.

Definition parts_text (parts : list part) : list Z := concat (map part_text parts).

Definition prepend (s : list Z) (r : uri_error + list Z) : uri_error + list Z := match r with inl e => inl e | inr t => inr (s ++ t) end.

(** A loop with the body [body] turns the input into a text, or ends with an error *)
Inductive escapes (body : list Z -> step) : list Z -> uri_error + list Z -> Prop :=
| escapes_end : escapes body [] (inr [])
| escapes_error input e : input <> [] -> body input = RAISE e -> escapes body input (inl e)
| escapes_step input parts rest r : body input = APPEND parts rest -> Forall plain_part parts ->
    zlength rest < zlength input -> zlength (parts_text parts) <= 3 * (zlength input - zlength rest) ->
    escapes body rest r -> escapes body input (prepend (parts_text parts) r).

Lemma escapes_unique body input r : escapes body input r -> forall r', escapes body input r' -> r' = r.
Proof.
  induction 1 as [| input e Hne E | input parts rest r E _ Hlt _ _ IH]; intros r' H'.
  - inversion H' as [| ? ? Hne' _ | ? parts rest ? _ _ Hlt]; subst; [reflexivity | easy |]. pose proof (zlength_nonneg rest). rewrite (@zlength_nil Z) in Hlt. lia.
  - inversion H' as [| ? ? _ E' | ? ? ? ? E']; subst; [easy | congruence | congruence].
  - inversion H' as [| ? ? _ E' | ? parts' rest' r0 E' _ _ _ Hr0]; subst; [pose proof (zlength_nonneg rest); rewrite (@zlength_nil Z) in Hlt; lia | congruence |].
    assert (parts' = parts /\ rest' = rest) as [-> ->] by (split; congruence). f_equal. now apply IH.
Qed.

Lemma escapes_size body input out : escapes body input (inr out) -> zlength out <= 3 * zlength input.
Proof.
  intros H. remember (inr out) as r eqn:Er. revert out Er. induction H as [| input e Hne E | input parts rest r E _ Hlt Hsize _ IH]; intros out Er; [injection Er as <-; discriminate | discriminate |].
  destruct r as [e | t]; [discriminate |]. injection Er as <-. specialize (IH t eq_refl). rewrite zlength_app. lia.
Qed.

Section Runs.
Context {BH : BlockHeap} (T : magic_tables) (HT : tables_ok T) (HD : tables_direct T).

Lemma plain_texts held m parts : Forall plain_part parts -> Forall2 (part_is T held m) parts (map part_text parts).
Proof. induction 1 as [| x parts Hx _ IH]; constructor; [| exact IH]. destruct x; cbn in Hx |- *; try easy; now constructor. Qed.

Lemma loop_spec held body input r : escapes body input r -> forall fuel w p buf, (length input <= fuel)%nat ->
  building held w p buf -> fits_32 (zlength buf + 3 * zlength input) ->
  runs (escape_loop T body fuel p input) w (fun result w' =>
    match result, r with
    | inl e, inl e' => e = e' /\ good held w' /\ keeps (fun q => 0 < held q) (blocks w) (blocks w')
    | inr q, inr out => appends held w buf out q w'
    | _, _ => False
    end).
Proof.
  induction 1 as [| input e Hne E | input parts rest r E Hplain Hlt Hsize _ IH]; intros fuel w p buf Hfuel Hw Hfit.
  - assert (El : escape_loop T body fuel p [] = mret (inr p)) by (now destruct fuel). rewrite El. apply runs_ret. split; [now rewrite app_nil_r | apply keeps_refl].
  - destruct input as [| c input]; [easy |]. destruct fuel as [| fuel]; [cbn in Hfuel; lia |]. cbn [escape_loop]. rewrite E. apply runs_bind.
    eapply runs_mono; [exact (builder_destroy_spec _ _ _ _ Hw) |]. intros u w1 [H1 Hk1]. apply runs_ret. now splits.
  - pose proof (zlength_nonneg rest) as Hrest. destruct input as [| c input]; [rewrite (@zlength_nil Z) in Hlt; lia |]. destruct fuel as [| fuel]; [cbn in Hfuel; lia |].
    cbn [escape_loop]. rewrite E. apply runs_bind.
    assert (Hfit1 : fits_32 (zlength (buf ++ concat (map part_text parts)))).
    { unfold fits_32 in *. rewrite zlength_app. fold (parts_text parts). lia. }
    eapply runs_mono; [apply (append_parts_spec T HT HD held parts (map part_text parts) w p buf Hw); [now apply plain_texts | exact Hfit1] |].
    intros q w1 [H1 Hk1]. eapply runs_mono; [apply (IH fuel w1 q (buf ++ concat (map part_text parts))); [| exact H1 |] |].
    { unfold zlength in Hlt. cbn [length] in Hfuel, Hlt. lia. }
    { unfold fits_32 in *. rewrite zlength_app. fold (parts_text parts). lia. }
    intros result w2 H2. destruct result as [e | q2], r as [e' | t]; try easy; cbn [prepend].
    + destruct H2 as (-> & H2 & Hk2). splits; [reflexivity | exact H2 | eapply kept_trans; eassumption].
    + destruct H2 as [H2 Hk2]. split; [rewrite app_assoc; exact H2 | eapply kept_trans; eassumption].
Qed.

(** A routine makes the string of the text, or leaves nothing behind *)
Definition delivers (held : Z -> Z) (w : world content) (r : uri_error + list Z) (result : uri_error + Z) (w' : world content) : Prop :=
  match result, r with
  | inl e, inl e' => e = e' /\ good held w' /\ keeps (fun q => 0 < held q) (blocks w) (blocks w')
  | inr p, inr out => made T held (blocks w) out p w'
  | _, _ => False
  end.

Lemma routine_spec held w body input r : escapes body input r -> match r with inr out => is_text out | inl _ => True end ->
  good held w -> fits_32 (3 * zlength input) -> runs (escape_routine T body input) w (delivers held w r).
Proof.
  intros H Htext Hgood Hfit. unfold escape_routine. apply runs_bind. eapply runs_mono; [exact (create_spec held w Hgood) |]. intros p w1 [H1 Hk1].
  apply runs_bind. eapply runs_mono; [apply (loop_spec held body input r H (length input) w1 p []); [reflexivity | exact H1 | exact Hfit] |].
  intros result w2 H2. destruct result as [e | q], r as [e' | out]; try easy.
  - destruct H2 as (-> & H2 & Hk2). apply runs_ret. cbn [delivers]. splits; [reflexivity | exact H2 | eapply kept_trans; eassumption].
  - destruct H2 as [H2 Hk2]. pose proof (escapes_size _ _ _ H) as Hsize. apply runs_bind.
    eapply runs_mono; [apply (finalize_spec T HT HD held w2 q _ H2 Htext); unfold fits_32 in *; cbn [app]; lia |].
    intros string_p w3 Hm. apply runs_ret. eapply made_after; [| exact Hm]. eapply kept_trans; eassumption.
Qed.
End Runs.
