(* ===== verification/EscapesTheory.v ===== *)
(** * The global escapes are the functions the language specifies

    The three sets of characters are those of the language; what each routine of
    Escapes.v delivers, on every string and with the errors; and the round trips. *)
From Stdlib Require Import ZArith Lia Bool List.
From stdpp Require Import base gmap list.
From S2P Require Import Prelude LitChars LitDigits LitStrings JmemHeap JmemPointers Values BlockHeap MagicStrings MagicTable StringData Decimal.
From S2P Require Import StringRepr StringAccess Ownership Counting Release Strings StringTheory StringJoin StringCut StringInput StringBuilder Escapes.
Import ListNotations.
#[local] Open Scope Z_scope.

(** ** Digits and sets *)

Definition upper_hex (v : Z) : Z := if v <? 10 then 48 + v else 55 + v.
Definition percent (b : Z) : list Z := [37; upper_hex (b / 16); upper_hex (b mod 16)].

Definition is_alphanumeric (c : Z) : bool := ((48 <=? c) && (c <=? 57)) || ((65 <=? c) && (c <=? 90)) || ((97 <=? c) && (c <=? 122)).

(** uriMark, uriReserved with the number sign, and the marks escape leaves alone *)
Definition uri_mark : list Z := [45; 95; 46; 33; 126; 42; 39; 40; 41].
Definition uri_reserved : list Z := [59; 47; 63; 58; 64; 38; 61; 43; 36; 44; 35].
Definition escape_mark : list Z := [64; 42; 95; 43; 45; 46; 47].

Notation is_in := ecma_builtin_global_object_character_is_in.

Lemma sets_hold c : 0 <= c < 128 ->
  is_in c unescaped_uri_component_set = is_alphanumeric c || existsb (Z.eqb c) uri_mark
  /\ is_in c unescaped_uri_set = is_alphanumeric c || existsb (Z.eqb c) uri_mark || existsb (Z.eqb c) uri_reserved
  /\ is_in c ecma_escape_set = is_alphanumeric c || existsb (Z.eqb c) escape_mark.
Proof.
  intros Hc. assert (H : forallb (fun k => let c := Z.of_nat k in
    Bool.eqb (is_in c unescaped_uri_component_set) (is_alphanumeric c || existsb (Z.eqb c) uri_mark)
    && Bool.eqb (is_in c unescaped_uri_set) (is_alphanumeric c || existsb (Z.eqb c) uri_mark || existsb (Z.eqb c) uri_reserved)
    && Bool.eqb (is_in c ecma_escape_set) (is_alphanumeric c || existsb (Z.eqb c) escape_mark)) (seq 0 128) = true) by now vm_compute.
  rewrite forallb_forall in H. specialize (H (Z.to_nat c) ltac:(apply in_seq; lia)). cbv zeta in H. rewrite Z2Nat.id in H by lia.
  apply andb_prop in H as [H H3]. apply andb_prop in H as [H1 H2]. now splits; apply Bool.eqb_prop.
Qed.

Lemma byte_to_hex b : is_u8 b -> ecma_builtin_global_object_byte_to_hex b = percent b.
Proof.
  intros Hb. unfold ecma_builtin_global_object_byte_to_hex, percent. unfold is_u8 in Hb.
  rewrite (land_ones' b 4 15) by (reflexivity || lia). rewrite Z.shiftr_div_pow2 by lia. change (2 ^ 4) with 16.
  assert (H : forall v, 0 <= v < 16 -> hex_char v = upper_hex v).
  { intros v Hv. unfold hex_char, upper_hex. destruct (Z.ltb_spec 9 v), (Z.ltb_spec v 10); try lia; unfold u8; rewrite Z.mod_small; lia. }
  assert (H1 : 0 <= b / 16 < 16) by (Z.div_mod_to_equations; lia). assert (H2 : 0 <= b mod 16 < 16) by (Z.div_mod_to_equations; lia).
  unfold u16, u8. rewrite !Z.mod_small by lia. now rewrite !H.
Qed.

Lemma upper_hex_digit v : 0 <= v < 16 -> is_hex (upper_hex v) /\ hex_value (upper_hex v) = v /\ 48 <= upper_hex v < 71.
Proof.
  intros Hv. assert (H : forallb (fun k => let v := Z.of_nat k in lit_char_is_hex_digit (upper_hex v) && (hex_value (upper_hex v) =? v)
    && (48 <=? upper_hex v) && (upper_hex v <? 71)) (seq 0 16) = true) by now vm_compute.
  rewrite forallb_forall in H. specialize (H (Z.to_nat v) ltac:(apply in_seq; lia)). cbv zeta in H. rewrite Z2Nat.id in H by lia.
  apply andb_prop in H as [H H4]. apply andb_prop in H as [H H3]. apply andb_prop in H as [H1 H2]. apply Z.eqb_eq in H2. apply Z.leb_le in H3. apply Z.ltb_lt in H4. now splits.
Qed.

(** ** Encoding *)

Definition lone (cp : Z) : bool := lit_is_code_point_utf16_high_surrogate cp || lit_is_code_point_utf16_low_surrogate cp.

Definition escape_code_point (set : list Z) (cp : Z) : list Z :=
  if (cp <? 128) && is_in cp set then [cp] else concat (map percent (lit_code_point_to_utf8 cp)).

Definition encode_text (set : list Z) (cps : list Z) : uri_error + list Z :=
  if existsb lone cps then inl ECMA_ERR_UNICODE_SURROGATE_PAIR_MISSING else inr (concat (map (escape_code_point set) cps)).

Lemma encode_text_cons set cp cps : lone cp = false -> encode_text set (cp :: cps) = prepend (escape_code_point set cp) (encode_text set cps).
Proof. intros H. unfold encode_text. cbn [existsb map concat]. rewrite H. cbn [orb]. now destruct (existsb lone cps). Qed.

(** What the step appends for a code point *)
Definition encoded_parts (set : list Z) (cp : Z) : list part :=
  match lit_code_point_to_utf8 cp with
  | [octet] => if is_in octet set then [BYTE octet] else [RAW (ecma_builtin_global_object_byte_to_hex octet)]
  | octets => map (fun octet => RAW (ecma_builtin_global_object_byte_to_hex octet)) octets
  end.

Lemma utf8_bytes cp : is_code_point cp -> Forall is_u8 (lit_code_point_to_utf8 cp).
Proof.
  intros H. unfold is_code_point in H. destruct (Z.leb_spec cp 65535).
  - rewrite code_point_to_utf8_unit, code_unit_bytes by (unfold is_u16; lia). apply unit_bytes_u8. unfold is_u16. lia.
  - rewrite code_point_bytes by lia. repeat (apply Forall_cons; split; [unfold is_u8; Z.div_mod_to_equations; lia |]). constructor.
Qed.

Lemma raw_escapes octets : Forall is_u8 octets ->
  parts_text (map (fun octet => RAW (ecma_builtin_global_object_byte_to_hex octet)) octets) = concat (map percent octets)
  /\ Forall plain_part (map (fun octet => RAW (ecma_builtin_global_object_byte_to_hex octet)) octets).
Proof.
  unfold parts_text. induction 1 as [| b octets Hb _ [IH1 IH2]]; [now split |]. cbn [map concat part_text]. rewrite IH1, byte_to_hex by exact Hb.
  split; [reflexivity | now constructor].
Qed.

Lemma utf8_single cp : is_code_point cp -> match lit_code_point_to_utf8 cp with [octet] => octet = cp /\ cp < 128 | _ :: _ :: _ => 128 <= cp | [] => False end.
Proof.
  intros H. unfold is_code_point in H. unfold lit_code_point_to_utf8. destruct (Z.leb_spec cp LIT_UTF8_1_BYTE_CODE_POINT_MAX) as [Hl | Hl]; unfold LIT_UTF8_1_BYTE_CODE_POINT_MAX in Hl.
  - split; [unfold u8; apply Z.mod_small; lia | lia].
  - cbv zeta. destruct (cp <=? LIT_UTF8_2_BYTE_CODE_POINT_MAX); [lia |]. destruct (cp <=? LIT_UTF8_3_BYTE_CODE_POINT_MAX); lia.
Qed.

Lemma encoded_parts_text set cp : is_code_point cp -> parts_text (encoded_parts set cp) = escape_code_point set cp /\ Forall plain_part (encoded_parts set cp).
Proof.
  intros Hc. pose proof (raw_escapes _ (utf8_bytes cp Hc)) as Hraw. pose proof (utf8_single cp Hc) as Hs. unfold encoded_parts, escape_code_point.
  destruct (lit_code_point_to_utf8 cp) as [| octet [| octet2 octets]]; [easy | |].
  - destruct Hs as [-> Hlt]. rewrite (proj2 (Z.ltb_lt _ _) Hlt). cbn [andb]. destruct (is_in cp set); [| exact Hraw]. split; [reflexivity | now repeat constructor].
  - rewrite (proj2 (Z.ltb_ge _ _) Hs). exact Hraw.
Qed.

Lemma percents_length octets : zlength (concat (map percent octets)) = 3 * zlength octets.
Proof. induction octets as [| b octets IH]; [reflexivity |]. cbn [map concat]. rewrite zlength_app, IH, zlength_cons. unfold percent. change (zlength [37; upper_hex (b / 16); upper_hex (b mod 16)]) with 3. lia. Qed.

Lemma escape_length set cp : is_code_point cp -> zlength (escape_code_point set cp) <= 3 * zlength (lit_code_point_to_utf8 cp).
Proof.
  intros Hc. pose proof (utf8_single cp Hc) as Hs. unfold escape_code_point. destruct ((cp <? 128) && is_in cp set); [| rewrite percents_length; lia].
  destruct (lit_code_point_to_utf8 cp) as [| octet octets]; [easy |]. rewrite !zlength_cons, (@zlength_nil Z). pose proof (zlength_nonneg octets). lia.
Qed.

Lemma encode_step_text set cp (sizes : Z) input r : is_code_point cp -> zlength (lit_code_point_to_utf8 cp) <= sizes -> forall before,
  zlength input + sizes = zlength before ->
  encode_uri_step set before = APPEND (encoded_parts set cp) input -> escapes (encode_uri_step set) input r ->
  escapes (encode_uri_step set) before (prepend (escape_code_point set cp) r).
Proof.
  intros Hc Hs before Hsize E Hr. destruct (encoded_parts_text set cp Hc) as [<- Hplain]. pose proof (escape_length set cp Hc) as Hl.
  pose proof (utf8_single cp Hc) as Hne. apply (escapes_step _ _ _ input); try assumption.
  - destruct (lit_code_point_to_utf8 cp) as [| octet octets]; [easy |]. rewrite zlength_cons in Hs. pose proof (zlength_nonneg octets). lia.
  - rewrite (proj1 (encoded_parts_text set cp Hc)). lia.
Qed.

Lemma lone_iff u : lone u = true <-> is_high u \/ is_low u.
Proof. unfold lone. now rewrite orb_true_iff, high_test, low_test. Qed.

Lemma encode_appends set cp input : is_code_point cp ->
  (let octets := lit_code_point_to_utf8 cp in
   match octets with
   | [octet] =>
       if is_in octet set then APPEND [BYTE octet] input
       else APPEND [RAW (ecma_builtin_global_object_byte_to_hex octet)] input
   | _ => APPEND (map (fun octet => RAW (ecma_builtin_global_object_byte_to_hex octet)) octets) input
   end) = APPEND (encoded_parts set cp) input.
Proof.
  intros Hc. unfold encoded_parts. pose proof (utf8_single cp Hc) as Hs. destruct (lit_code_point_to_utf8 cp) as [| octet [| o os]]; [easy | now destruct (is_in octet set) | reflexivity].
Qed.

Lemma encode_spec set units : Forall is_u16 units -> escapes (encode_uri_step set) (cesu8_encode units) (encode_text set (code_points units)).
Proof.
  induction units as [| h l units Hh Hl IH | u units N IH] using code_points_ind; intros Hu.
  - apply escapes_end.
  - apply Forall_cons in Hu as [Uh Hu]. apply Forall_cons in Hu as [Ul Hu]. rewrite code_points_pair by assumption.
    destruct (pair_value h l Hh Hl) as (_ & Ep & _ & _ & Hr). assert (Hc : is_code_point (pair_code_point h l)) by (unfold is_code_point; lia).
    assert (Hlone : lone (pair_code_point h l) = false).
    { destruct (lone _) eqn:E; [| reflexivity]. apply lone_iff in E. surrogate_bounds. lia. }
    rewrite encode_text_cons by exact Hlone. apply (encode_step_text set _ (zlength (lit_code_unit_to_utf8 h) + zlength (lit_code_unit_to_utf8 l)) (cesu8_encode units)); [exact Hc | | | | now apply IH].
    + rewrite pair_length by lia. rewrite !high_length by (now left + now right). lia.
    + rewrite !cesu8_encode_cons, !zlength_app. lia.
    + unfold encode_uri_step. rewrite !cesu8_encode_cons, read_code_unit by assumption. rewrite advance_unit.
      assert (Eh : lit_is_code_point_utf16_low_surrogate h = false).
      { destruct (lit_is_code_point_utf16_low_surrogate h) eqn:E; [| reflexivity]. apply low_test in E. surrogate_bounds. lia. }
      rewrite Eh, (proj2 (high_test h) Hh), read_code_unit by assumption. rewrite (proj2 (low_test l) Hl), advance_unit, Ep.
      destruct (encode_cons_view l units) as (c & rest & ->). exact (encode_appends set _ _ Hc).
  - apply Forall_cons in Hu as [Uu Hu]. rewrite code_points_single by assumption. pose proof Uu as Hr. unfold is_u16 in Hr.
    assert (Hc : is_code_point u) by (unfold is_code_point; lia). specialize (IH Hu).
    destruct (lone u) eqn:E.
    + unfold encode_text. cbn [existsb]. rewrite E. cbn [orb]. rewrite cesu8_encode_cons. apply escapes_error; [apply code_unit_nonempty |].
      unfold encode_uri_step. rewrite read_code_unit by assumption. rewrite advance_unit.
      destruct (lit_is_code_point_utf16_low_surrogate u) eqn:El; [reflexivity |]. unfold lone in E. rewrite El, orb_false_r in E. rewrite E.
      destruct units as [| v units]; [reflexivity |]. apply Forall_cons in Hu as [Uv Hu]. rewrite cesu8_encode_cons, read_code_unit by assumption.
      rewrite (not_pair_view u v units N E). now destruct (encode_cons_view v units) as (c & rest & ->).
    + rewrite encode_text_cons by exact E. apply (encode_step_text set u (zlength (lit_code_unit_to_utf8 u)) (cesu8_encode units)); [exact Hc | | | | exact IH].
      * rewrite code_point_to_utf8_unit by lia. lia.
      * rewrite cesu8_encode_cons, zlength_app. lia.
      * unfold encode_uri_step. rewrite cesu8_encode_cons, read_code_unit by assumption. rewrite advance_unit.
        unfold lone in E. apply orb_false_iff in E as [-> ->]. exact (encode_appends set _ _ Hc).
Qed.

(** ** Decoding *)

Definition hex_digit (c : Z) : Prop := is_u8 c /\ is_hex c.

(** A byte and an escape of it *)
Definition escaped (b : Z) (text : list Z) : Prop := exists h l, text = [37; h; l] /\ hex_digit h /\ hex_digit l /\ b = hex_value h * 16 + hex_value l.

(** The UTF-8 bytes of a code point that is not a surrogate *)
Definition utf8_octets (octets : list Z) (cp : Z) : Prop := lone cp = false /\ 128 <= cp <= 1114111 /\ octets = lit_code_point_to_utf8 cp.

(** Four bytes for a code point that has three in UTF-8; what they encode *)
Definition overlong_octets (octets : list Z) (cp : Z) : Prop :=
  lone cp = false
  /\ exists b2 b3 b4, octets = [240; b2; b3; b4] /\ 129 <= b2 <= 143 /\ is_u8 b3 /\ is_u8 b4 /\ is_extra_byte b3 = true /\ is_extra_byte b4 = true
       /\ cp = (b2 - 128) * 4096 + (b3 - 128) * 64 + (b4 - 128).

(** The sequences of bytes that the code decodes *)
Definition octets_decode (octets : list Z) (cp : Z) : Prop := utf8_octets octets cp \/ overlong_octets octets cp.

(** decodeURI keeps the escapes of the reserved characters *)
Definition kept (reserved : list Z) (c : Z) : bool := is_in c reserved && negb (is_in c unescaped_uri_component_set).

(** Decoding of code units; [character] is what sequences of bytes stand for *)
Inductive decodes_with (character : list Z -> Z -> Prop) (reserved : list Z) : list Z -> list Z -> Prop :=
| decodes_end : decodes_with character reserved [] []
| decodes_unit u rest out : u <> 37 -> decodes_with character reserved rest out -> decodes_with character reserved (u :: rest) (u :: out)
| decodes_kept c h l rest out : escaped c [37; h; l] -> c < 128 -> kept reserved c = true ->
    decodes_with character reserved rest out -> decodes_with character reserved (37 :: h :: l :: rest) (37 :: h :: l :: out)
| decodes_ascii c text rest out : escaped c text -> c < 128 -> kept reserved c = false ->
    decodes_with character reserved rest out -> decodes_with character reserved (text ++ rest) (c :: out)
| decodes_sequence octets texts cp rest out : Forall2 escaped octets texts -> character octets cp ->
    decodes_with character reserved rest out -> decodes_with character reserved (concat texts ++ rest) (lit_utf16_encode_code_point cp ++ out).

(** Decoding in the language, and with the overlong sequences *)
Abbreviation decodes := (decodes_with utf8_octets).
Abbreviation leniently_decodes := (decodes_with octets_decode).

(** The escapes of an overlong sequence somewhere *)
Definition has_overlong (units : list Z) : Prop :=
  exists before octets texts after cp, units = before ++ concat texts ++ after /\ Forall2 escaped octets texts /\ overlong_octets octets cp.

Lemma has_overlong_after before units : has_overlong units -> has_overlong (before ++ units).
Proof. intros (b & octets & texts & a & cp & -> & H). exists (before ++ b), octets, texts, a, cp. split; [now rewrite <- app_assoc | exact H]. Qed.

Lemma decodes_leniently set units out : decodes set units out -> leniently_decodes set units out.
Proof.
  induction 1 as [| u rest out Hne _ IH | c h l rest out He Hc Hk _ IH | c text rest out He Hc Hk _ IH | octets texts cp rest out Ht Hd _ IH].
  - constructor.
  - now constructor.
  - now apply (decodes_kept _ _ c).
  - now apply decodes_ascii.
  - apply (decodes_sequence _ _ octets); [exact Ht | now left | exact IH].
Qed.

Lemma leniently_decodes_only set units out : leniently_decodes set units out -> ~ has_overlong units -> decodes set units out.
Proof.
  induction 1 as [| u rest out Hne _ IH | c h l rest out He Hc Hk _ IH | c text rest out He Hc Hk _ IH | octets texts cp rest out Ht Hd _ IH]; intros Hno.
  - constructor.
  - constructor; [exact Hne |]. apply IH. intros H. now apply Hno, (has_overlong_after [u]).
  - apply (decodes_kept _ _ c); try assumption. apply IH. intros H. now apply Hno, (has_overlong_after [37; h; l]).
  - apply decodes_ascii; try assumption. apply IH. intros H. now apply Hno, has_overlong_after.
  - destruct Hd as [Hd | Hd]; [| exfalso; apply Hno; exists [], octets, texts, rest, cp; now split].
    apply (decodes_sequence _ _ octets); try assumption. apply IH. intros H. now apply Hno, has_overlong_after.
Qed.

Lemma prepend_app a b r : prepend a (prepend b r) = prepend (a ++ b) r.
Proof. destruct r; [reflexivity |]. cbn [prepend]. now rewrite app_assoc. Qed.

Lemma hex_digit_ascii c : hex_digit c -> is_ascii c /\ 48 <= c.
Proof.
  intros [Hc Hh]. pose proof (hex_byte c Hc Hh) as (Hlt & _ & _). destruct (hex_cases c Hc) as [E _]. unfold is_hex in Hh. rewrite Hh in E.
  unfold is_u8, is_ascii in *. destruct (Z.leb_spec 48 c); [lia |]. exfalso. symmetry in E.
  rewrite (proj2 (Z.leb_gt 65 c)), (proj2 (Z.leb_gt 97 c)) in E by lia. discriminate E.
Qed.

Lemma escaped_byte b text : escaped b text -> is_u8 b /\ Forall is_ascii text.
Proof.
  intros (h & l & -> & Hh & Hl & ->). destruct (hex_byte h (proj1 Hh) (proj2 Hh)) as (_ & _ & H1). destruct (hex_byte l (proj1 Hl) (proj2 Hl)) as (_ & _ & H2).
  split; [unfold is_u8; lia |]. pose proof (hex_digit_ascii h Hh). pose proof (hex_digit_ascii l Hl). constructor; [unfold is_ascii; lia |]. constructor; [tauto |]. constructor; [tauto | constructor].
Qed.

Lemma hex_lookup_digits h l rest : hex_digit h -> hex_digit l -> Forall is_u8 rest ->
  lit_char_hex_lookup (h :: l :: rest) 2 = Some (hex_value h * 16 + hex_value l) /\ hex_value h * 16 + hex_value l < 256.
Proof.
  intros Hh Hl Hr. pose proof (hex_lookup_two (h :: l :: rest) ltac:(constructor; [apply Hh |]; constructor; [apply Hl | exact Hr])) as H. cbv beta iota in H.
  destruct Hh as [Uh Hh], Hl as [Ul Hl]. pose proof (hex_byte h Uh Hh) as (_ & _ & H1). pose proof (hex_byte l Ul Hl) as (_ & _ & H2).
  unfold is_hex in Hh, Hl. rewrite Hh, Hl in H. split; [exact H | lia].
Qed.

Lemma ascii_app s units : Forall is_ascii s -> cesu8_encode (s ++ units) = s ++ cesu8_encode units.
Proof. intros Hs. rewrite cesu8_encode_app. now rewrite (proj2 (ascii_encode s Hs)). Qed.

Lemma ascii_cons c units : is_ascii c -> cesu8_encode (c :: units) = c :: cesu8_encode units.
Proof. intros Hc. rewrite cesu8_encode_cons. now rewrite ascii_unit. Qed.

Lemma encode_bytes units : Forall is_u16 units -> Forall is_u8 (cesu8_encode units).
Proof. induction 1 as [| u units Hu _ IH]; [constructor |]. rewrite cesu8_encode_cons, code_unit_bytes by assumption. apply Forall_app. split; [now apply unit_bytes_u8 | exact IH]. Qed.

Lemma plain_run set s rest r : Forall (fun b => b <> 37) s -> escapes (decode_uri_step set) rest r -> escapes (decode_uri_step set) (s ++ rest) (prepend s r).
Proof.
  induction 1 as [| b s Hb _ IH]; intros H; [now destruct r |]. specialize (IH H). change (b :: s) with ([b] ++ s). rewrite <- prepend_app.
  change (prepend [b]) with (prepend (parts_text [BYTE b])). apply (escapes_step _ _ _ (s ++ rest)); [| now repeat constructor | | | exact IH].
  - cbn [app decode_uri_step]. now rewrite (proj2 (Z.eqb_neq _ _) Hb).
  - cbn [app]. rewrite zlength_cons. lia.
  - cbn [app]. rewrite zlength_cons. change (zlength (parts_text [BYTE b])) with 1. lia.
Qed.

Lemma unit_plain u : is_u16 u -> u <> 37 -> Forall (fun b => b <> 37) (lit_code_unit_to_utf8 u).
Proof.
  intros Hu Hne. rewrite code_unit_bytes by exact Hu. unfold is_u16 in Hu. unfold unit_bytes.
  destruct (Z.ltb_spec u 128); [| destruct (Z.ltb_spec u 2048)]; repeat (apply Forall_cons; split; [Z.div_mod_to_equations; lia |]); constructor.
Qed.

(** The step on an escape of an ASCII character *)
Lemma decode_ascii_step set h l rest r (c := hex_value h * 16 + hex_value l) : hex_digit h -> hex_digit l -> Forall is_u8 rest -> c < 128 ->
  escapes (decode_uri_step set) rest r ->
  escapes (decode_uri_step set) (37 :: h :: l :: rest) (prepend (if kept set c then [37; h; l] else [c]) r).
Proof.
  intros Hh Hl Hrest Hc Hr. destruct (hex_lookup_digits h l rest Hh Hl Hrest) as [E _]. fold c in E.
  destruct (hex_byte h (proj1 Hh) (proj2 Hh)) as (_ & _ & H1). destruct (hex_byte l (proj1 Hl) (proj2 Hl)) as (_ & _ & H2).
  assert (Hnn : 0 <= c) by (unfold c; lia). assert (Estep : decode_uri_step set (37 :: h :: l :: rest) =
    if kept set c then APPEND [CHAR 37] (h :: l :: rest) else APPEND [BYTE c] rest).
  { cbn [decode_uri_step]. change (negb (37 =? 37)) with false. cbv iota. rewrite E. rewrite (proj2 (Z.eqb_neq c UINT32_MAX)) by (unfold UINT32_MAX; lia).
    cbv zeta. unfold u16. rewrite (Z.mod_small c) by lia. unfold u8. rewrite (Z.mod_small c) by lia. unfold LIT_UTF8_1_BYTE_CODE_POINT_MAX. rewrite (proj2 (Z.leb_le c 127)) by lia. reflexivity. }
  destruct (kept set c).
  - change [37; h; l] with ([37] ++ [h; l]). rewrite <- prepend_app. change (prepend [37]) with (prepend (parts_text [CHAR 37])).
    apply (escapes_step _ _ _ (h :: l :: rest)); [exact Estep | constructor; [unfold plain_part, is_u16; lia | apply List.Forall_nil] | rewrite !zlength_cons; lia | rewrite !zlength_cons; change (zlength (parts_text [CHAR 37])) with 1; lia |].
    pose proof (hex_digit_ascii h Hh) as [_ G1]. pose proof (hex_digit_ascii l Hl) as [_ G2].
    apply (plain_run set [h; l] rest r); [| exact Hr]. constructor; [lia |]. constructor; [lia | constructor].
  - change (prepend [c]) with (prepend (parts_text [BYTE c])). apply (escapes_step _ _ _ rest); [exact Estep | now repeat constructor | rewrite !zlength_cons; lia | rewrite !zlength_cons; change (zlength (parts_text [BYTE c])) with 1; lia | exact Hr].
Qed.

(** Sequences of escapes *)
Definition is_extra (b : Z) : Prop := is_u8 b /\ is_extra_byte b = true.

Lemma decode_octets_spec octets texts : Forall2 escaped octets texts -> Forall is_extra octets -> forall rest acc, Forall is_u8 rest ->
  decode_octets (length octets) (concat texts ++ rest) acc = Some (acc ++ octets, rest).
Proof.
  induction 1 as [| b text octets texts Ht Hts IH]; intros Hx rest acc Hrest; [now rewrite app_nil_r |]. inversion Hx as [| ? ? [Ub Xb] Hx']; subst.
  destruct (escaped_byte b text Ht) as [Hb _]. destruct Ht as (h & l & -> & Hh & Hl & Ev).
  assert (Hmore : Forall is_u8 (concat texts ++ rest)).
  { apply Forall_app. split; [| exact Hrest]. apply Forall_concat. clear -Hts. induction Hts as [| c t octets texts Hc _ IH]; constructor; [| exact IH].
    apply escaped_byte in Hc as [_ Hc]. eapply List.Forall_impl; [| exact Hc]. unfold is_ascii, is_u8. lia. }
  destruct (hex_lookup_digits h l _ Hh Hl Hmore) as [E _]. rewrite <- Ev in E. cbn [length concat app decode_octets]. change (negb (37 =? 37)) with false. cbv iota.
  rewrite E. unfold is_extra_byte in Xb. rewrite Xb. unfold is_u8 in Hb. rewrite (proj2 (Z.eqb_neq b UINT32_MAX)) by (unfold UINT32_MAX; lia). cbn [orb negb].
  change (advance URI_ENCODED_BYTE_SIZE (37 :: h :: l :: concat texts ++ rest)) with (concat texts ++ rest). rewrite IH by assumption.
  unfold u8. rewrite Z.mod_small by lia. now rewrite <- app_assoc.
Qed.

(** The class of a first byte that is not ASCII, by the number of bytes *)
Definition leads (b : Z) (count : nat) : Prop :=
  if Z.land b 224 =? 192 then count = 2%nat else if Z.land b 240 =? 224 then count = 3%nat else if Z.land b 248 =? 240 then count = 4%nat else False.

Lemma lead_classes b : is_u8 b ->
  (Z.land b 224 =? 192) = (192 <=? b) && (b <? 224) /\ (Z.land b 240 =? 224) = (224 <=? b) && (b <? 240) /\ (Z.land b 248 =? 240) = (240 <=? b) && (b <? 248).
Proof.
  intros Hb. pose proof (bytes_all (fun b => Bool.eqb (Z.land b 224 =? 192) ((192 <=? b) && (b <? 224)) && Bool.eqb (Z.land b 240 =? 224) ((224 <=? b) && (b <? 240))
    && Bool.eqb (Z.land b 248 =? 240) ((240 <=? b) && (b <? 248))) ltac:(vm_compute; reflexivity) b Hb) as H. cbv beta in H.
  apply andb_prop in H as [H H3]. apply andb_prop in H as [H1 H2]. now splits; apply Bool.eqb_prop.
Qed.

Lemma leads_range b count : is_u8 b -> leads b count <-> (192 <= b < 224 /\ count = 2%nat) \/ (224 <= b < 240 /\ count = 3%nat) \/ (240 <= b < 248 /\ count = 4%nat).
Proof.
  intros Hb. unfold leads. destruct (lead_classes b Hb) as (-> & -> & ->).
  destruct (Z.leb_spec 192 b), (Z.ltb_spec b 224), (Z.leb_spec 224 b), (Z.ltb_spec b 240), (Z.leb_spec 240 b), (Z.ltb_spec b 248); cbn [andb]; lia.
Qed.

(** The step on a sequence, by the octets it reads *)
Definition sequence_step (octets rest : list Z) : step :=
  if negb (lit_is_valid_utf8_string octets true) then RAISE ECMA_ERR_INVALID_UTF8_STRING
  else
    match lit_read_code_point_from_utf8 octets with
    | None => READ_FAULT
    | Some (_, cp) => if lone cp then RAISE ECMA_ERR_INVALID_UTF8_CODEPOINT else APPEND [RAW (lit_code_point_to_cesu8 cp)] rest
    end.

Lemma decode_lead_step set h l rest (b := hex_value h * 16 + hex_value l) : hex_digit h -> hex_digit l -> Forall is_u8 rest -> 128 <= b ->
  (forall count, leads b count -> decode_uri_step set (37 :: h :: l :: rest) =
     match decode_octets (count - 1) rest [b] with None => RAISE ECMA_ERR_INVALID_UTF8_STRING | Some (octets, rest) => sequence_step octets rest end)
  /\ ((forall count, ~ leads b count) -> decode_uri_step set (37 :: h :: l :: rest) = RAISE ECMA_ERR_INVALID_UTF8_CHARACTER).
Proof.
  intros Hh Hl Hrest Hb. destruct (hex_lookup_digits h l rest Hh Hl Hrest) as [E Hlt]. fold b in E, Hlt.
  assert (Estep : forall r, (decode_uri_step set (37 :: h :: l :: rest) = r) <-> ((let decode count :=
      match decode_octets (count - 1) rest [b] with None => RAISE ECMA_ERR_INVALID_UTF8_STRING | Some (octets, rest) => sequence_step octets rest end in
    if Z.land b 224 =? 192 then decode 2%nat else if Z.land b 240 =? 224 then decode 3%nat else if Z.land b 248 =? 240 then decode 4%nat
    else RAISE ECMA_ERR_INVALID_UTF8_CHARACTER) = r)).
  { intros r. cbn [decode_uri_step]. change (negb (37 =? 37)) with false. cbv iota. rewrite E. rewrite (proj2 (Z.eqb_neq b UINT32_MAX)) by (unfold UINT32_MAX; lia).
    cbv zeta. unfold u16. rewrite (Z.mod_small b) by lia. unfold u8. rewrite (Z.mod_small b) by lia. unfold LIT_UTF8_1_BYTE_CODE_POINT_MAX. rewrite (proj2 (Z.leb_gt b 127)) by lia.
    reflexivity. }
  split.
  - intros count Hc. apply Estep. cbv zeta. unfold leads in Hc. destruct (Z.land b 224 =? 192); [now subst |]. destruct (Z.land b 240 =? 224); [now subst |].
    destruct (Z.land b 248 =? 240); [now subst | easy].
  - intros Hn. apply Estep. cbv zeta. unfold leads in Hn. destruct (Z.land b 224 =? 192); [now destruct (Hn 2%nat) |]. destruct (Z.land b 240 =? 224); [now destruct (Hn 3%nat) |].
    destruct (Z.land b 248 =? 240); [now destruct (Hn 4%nat) | reflexivity].
Qed.

Lemma read_overlong b2 b3 b4 : 129 <= b2 <= 143 -> is_extra b3 -> is_extra b4 ->
  lit_read_code_point_from_utf8 [240; b2; b3; b4] = Some (4, (b2 - 128) * 4096 + (b3 - 128) * 64 + (b4 - 128)).
Proof.
  intros H2 [U3 X3] [U4 X4]. pose proof (extra_range b3 U3 X3). pose proof (extra_range b4 U4 X4). cbn [lit_read_code_point_from_utf8].
  change (is_1_byte 240) with false. change (is_2_byte 240) with false. change (is_3_byte 240) with false. cbv iota. change (Z.land 240 7) with 0.
  change (Z.to_nat (4 - 1)) with 3%nat. cbn [read_extra_bytes].
  rewrite !extra_step by (repeat rewrite extra_step; Z.div_mod_to_equations; lia). cbn [option_map]. do 2 f_equal. Z.div_mod_to_equations; lia.
Qed.

(** Octets that decode are a lead and continuation bytes, valid, and read as the code point *)
Lemma decode_shape octets cp : octets_decode octets cp -> is_code_point cp /\ lone cp = false /\ exists b more, octets = b :: more /\ is_u8 b /\ 128 <= b
  /\ Forall is_extra more /\ leads b (S (length more)) /\ lit_is_valid_utf8_string octets true = true /\ exists n, lit_read_code_point_from_utf8 octets = Some (n, cp).
Proof.
  intros [(Hl & Hr & ->) | (Hl & b2 & b3 & b4 & -> & H2 & U3 & U4 & X3 & X4 & Ecp)].
  - assert (Hc : is_code_point cp) by (unfold is_code_point; lia). splits; [exact Hc | exact Hl |].
    pose proof (valid_utf8_step cp [] true Hc ltac:(intros _ _; reflexivity)) as Ev. pose proof (read_code_point_utf8 cp [] Hc) as Er. rewrite app_nil_r in Ev, Er.
    assert (Hshape : exists b more, lit_code_point_to_utf8 cp = b :: more /\ is_u8 b /\ 128 <= b /\ Forall is_extra more /\ leads b (S (length more))).
    { assert (X : forall x, is_extra (128 + x mod 64)).
      { intros x. assert (U : is_u8 (128 + x mod 64)) by (unfold is_u8; Z.div_mod_to_equations; lia). split; [exact U |].
        destruct (byte_tests _ U) as (_ & _ & _ & ->). rewrite (proj2 (Z.leb_le _ _)), (proj2 (Z.ltb_lt _ _)) by (Z.div_mod_to_equations; lia). reflexivity. }
      destruct (Z.leb_spec cp 65535); [rewrite code_point_to_utf8_unit, code_unit_bytes by (unfold is_u16; lia); unfold unit_bytes; rewrite (proj2 (Z.ltb_ge cp 128)) by lia; destruct (Z.ltb_spec cp 2048) | rewrite code_point_bytes by lia].
      all: eexists _, _; splits; [reflexivity | unfold is_u8; Z.div_mod_to_equations; lia | Z.div_mod_to_equations; lia | repeat (apply Forall_cons; split; [apply X |]); constructor |].
      all: apply leads_range; [unfold is_u8; Z.div_mod_to_equations; lia | cbn [length]].
      - left. split; [Z.div_mod_to_equations; lia | reflexivity].
      - right; left. split; [Z.div_mod_to_equations; lia | reflexivity].
      - right; right. split; [Z.div_mod_to_equations; lia | reflexivity]. }
    destruct Hshape as (b & more & Eo & Ub & Hb & Hx & Hlead). exists b, more. splits; try assumption. now exists (zlength (lit_code_point_to_utf8 cp)).
  - pose proof (extra_range b3 U3 X3). pose proof (extra_range b4 U4 X4).
    assert (U2 : is_u8 b2) by (unfold is_u8; lia). assert (X2 : is_extra_byte b2 = true).
    { destruct (byte_tests _ U2) as (_ & _ & _ & ->). now rewrite (proj2 (Z.leb_le _ _)), (proj2 (Z.ltb_lt _ _)) by lia. }
    splits; [unfold is_code_point; lia | exact Hl |]. exists 240, [b2; b3; b4]. splits; [reflexivity | unfold is_u8; lia | lia | | reflexivity | |].
    + constructor; [now split |]. constructor; [now split |]. constructor; [now split | constructor].
    + pose proof (valid_overlong [240; b2; b3; b4] [] true ltac:(exists b2, b3, b4; splits; (assumption || lia || reflexivity))) as Ev. now rewrite app_nil_r in Ev.
    + exists 4. rewrite Ecp. apply read_overlong; [exact H2 | now split | now split].
Qed.

Lemma utf16_cesu8 cp : is_code_point cp ->
  Forall is_u16 (lit_utf16_encode_code_point cp) /\ cesu8_encode (lit_utf16_encode_code_point cp) = lit_code_point_to_cesu8 cp /\ zlength (lit_code_point_to_cesu8 cp) <= 6.
Proof.
  intros _. assert (U : forall x, is_u16 (u16 x)) by (intros x; unfold is_u16, u16; apply Z.mod_pos_bound; lia).
  unfold lit_utf16_encode_code_point, lit_code_point_to_cesu8. destruct (cp <=? LIT_UTF16_CODE_UNIT_MAX).
  - splits; [constructor; [apply U | apply List.Forall_nil] | unfold cesu8_encode; cbn [map concat]; now rewrite app_nil_r | pose proof (code_unit_length (u16 cp)); lia].
  - splits; [constructor; [apply U |]; constructor; [apply U | apply List.Forall_nil] | unfold cesu8_encode; cbn [map concat]; now rewrite app_nil_r |].
    rewrite zlength_app. pose proof (code_unit_length (convert_code_point_to_high_surrogate cp)). pose proof (code_unit_length (convert_code_point_to_low_surrogate cp)). lia.
Qed.

Lemma texts_length octets texts : Forall2 escaped octets texts -> zlength (concat texts) = 3 * zlength octets.
Proof. induction 1 as [| b t octets texts (h & l & -> & _) _ IH]; [reflexivity |]. cbn [concat app]. rewrite !zlength_cons, IH. lia. Qed.

Lemma sequence_run set octets texts cp rest r : Forall2 escaped octets texts -> octets_decode octets cp -> Forall is_u8 rest -> escapes (decode_uri_step set) rest r ->
  escapes (decode_uri_step set) (concat texts ++ rest) (prepend (lit_code_point_to_cesu8 cp) r).
Proof.
  intros Ht Hd Hrest Hr. pose proof (texts_length _ _ Ht) as Hlen. destruct (decode_shape octets cp Hd) as (Hc & Hlone & b & more & -> & Ub & Hb & Hx & Hlead & Hvalid & n & Hread).
  destruct (utf16_cesu8 cp Hc) as (_ & _ & Hsize). replace (lit_code_point_to_cesu8 cp) with (parts_text [RAW (lit_code_point_to_cesu8 cp)]) by apply app_nil_r.
  assert (Hmore : 1 <= zlength more).
  { apply leads_range in Hlead; [| exact Ub]. unfold zlength. lia. }
  rewrite zlength_cons in Hlen.
  apply (escapes_step _ _ _ rest); [| constructor; [exact I | apply List.Forall_nil] | rewrite zlength_app; lia | unfold parts_text; cbn [map concat part_text]; rewrite app_nil_r, zlength_app; lia | exact Hr].
  inversion Ht as [| ? text ? more_texts Ht1 Hts]; subst. destruct (escaped_byte b text Ht1) as [_ _]. destruct Ht1 as (h & l & -> & Hh & Hl & ->). cbn [concat app].
  assert (Hbytes : Forall is_u8 (concat more_texts ++ rest)).
  { apply Forall_app. split; [| exact Hrest]. apply Forall_concat. clear -Hts. induction Hts as [| c t octets texts Hc _ IH]; constructor; [| exact IH].
    apply escaped_byte in Hc as [_ Hc]. eapply List.Forall_impl; [| exact Hc]. unfold is_ascii, is_u8. lia. }
  rewrite (proj1 (decode_lead_step set h l _ Hh Hl Hbytes Hb) _ Hlead). replace (S (length more) - 1)%nat with (length more) by lia.
  rewrite (decode_octets_spec more more_texts Hts Hx rest _ Hrest). cbn [app]. unfold sequence_step. now rewrite Hvalid, Hread, Hlone.
Qed.

(** Everything that decodes is decoded *)
Lemma decode_complete set us out : leniently_decodes set us out -> Forall is_u16 us ->
  Forall is_u16 out /\ escapes (decode_uri_step set) (cesu8_encode us) (inr (cesu8_encode out)).
Proof.
  induction 1 as [| u rest out Hne _ IH | c h l rest out He Hc Hk _ IH | c text rest out He Hc Hk _ IH | octets texts cp rest out Ht Hd _ IH]; intros Hu.
  - split; [constructor | apply escapes_end].
  - apply Forall_cons in Hu as [Uu Hu]. destruct (IH Hu) as [IH1 IH2]. split; [now constructor |]. rewrite !cesu8_encode_cons.
    exact (plain_run set _ _ _ (unit_plain u Uu Hne) IH2).
  - destruct (escaped_byte c _ He) as [_ Ha]. destruct (ascii_encode _ Ha) as [U16 _]. change (37 :: h :: l :: rest) with ([37; h; l] ++ rest) in *. change (37 :: h :: l :: out) with ([37; h; l] ++ out).
    apply Forall_app in Hu as [_ Hu]. destruct (IH Hu) as [IH1 IH2]. split; [now apply Forall_app |]. rewrite !ascii_app by exact Ha.
    destruct He as (h' & l' & E & Hh & Hl & ->). injection E as <- <-.
    pose proof (decode_ascii_step set h l _ _ Hh Hl (encode_bytes rest Hu) Hc IH2) as H. now rewrite Hk in H.
  - destruct (escaped_byte c _ He) as [Uc Ha]. apply Forall_app in Hu as [_ Hu]. destruct (IH Hu) as [IH1 IH2]. unfold is_u8 in Uc. split; [constructor; [unfold is_u16; lia | exact IH1] |].
    rewrite ascii_app, ascii_cons by (exact Ha || (unfold is_ascii; lia)). destruct He as (h & l & -> & Hh & Hl & ->).
    pose proof (decode_ascii_step set h l _ _ Hh Hl (encode_bytes rest Hu) Hc IH2) as H. now rewrite Hk in H.
  - apply Forall_app in Hu as [_ Hu]. destruct (IH Hu) as [IH1 IH2]. destruct (decode_shape octets cp Hd) as (Hcp & _). destruct (utf16_cesu8 cp Hcp) as (U & E & _).
    split; [now apply Forall_app |]. rewrite ascii_app, cesu8_encode_app, E.
    + exact (sequence_run set octets texts cp _ _ Ht Hd (encode_bytes rest Hu) IH2).
    + apply Forall_concat. clear -Ht. induction Ht as [| c t octets texts Hc _ IH]; constructor; [| exact IH]. now apply escaped_byte in Hc.
Qed.

(** What follows a percent sign *)
Lemma hex_start units : Forall is_u16 units ->
  (exists h l rest, units = h :: l :: rest /\ hex_digit h /\ hex_digit l) \/ lit_char_hex_lookup (cesu8_encode units) 2 = Some UINT32_MAX.
Proof.
  intros Hu. pose proof (hex_lookup_two _ (encode_bytes units Hu)) as H. pose proof (encode_bytes units Hu) as Hb. destruct (cesu8_encode units) as [| x [| y s]] eqn:E; [now right | now right |].
  destruct (lit_char_is_hex_digit x) eqn:Ex; cbn [andb] in H; [| now right]. destruct (lit_char_is_hex_digit y) eqn:Ey; cbn [andb] in H; [| now right]. left.
  apply Forall_cons in Hb as [Ux Hb]. apply Forall_cons in Hb as [Uy _].
  assert (Hx : hex_digit x) by (now split). assert (Hy : hex_digit y) by (now split).
  assert (Head : forall c units s, Forall is_u16 units -> is_ascii c -> cesu8_encode units = c :: s -> exists rest, units = c :: rest /\ Forall is_u16 rest /\ cesu8_encode rest = s).
  { clear. intros c units s Hu Hc E. destruct Hu as [| u units Uu Hu]; [discriminate |]. rewrite cesu8_encode_cons, code_unit_bytes in E by exact Uu. unfold is_u16, is_ascii in *. unfold unit_bytes in E.
    destruct (Z.ltb_spec u 128); [injection E as -> E; now exists units |]. destruct (Z.ltb_spec u 2048); injection E as E1 _; exfalso; revert E1; Z.div_mod_to_equations; lia. }
  destruct (Head x units _ Hu (proj1 (hex_digit_ascii x Hx)) E) as (rest & -> & Hrest & E2). destruct (Head y rest _ Hrest (proj1 (hex_digit_ascii y Hy)) E2) as (rest2 & -> & _ & _).
  now exists x, y, rest2.
Qed.

Lemma decode_octets_view count : forall units acc, Forall is_u16 units ->
  decode_octets count (cesu8_encode units) acc = None
  \/ exists octets texts rest, length octets = count /\ units = concat texts ++ rest /\ Forall2 escaped octets texts /\ Forall is_extra octets.
Proof.
  induction count as [| count IH]; intros units acc Hu; [right; exists [], [], units; splits; constructor |]. cbn [decode_octets].
  destruct Hu as [| u units Uu Hu]; [now left |]. destruct (Z.eq_dec u 37) as [-> | Hne].
  2: { left. rewrite cesu8_encode_cons. pose proof (unit_plain u Uu Hne) as Hp. destruct (encode_cons_view u units) as (c & s & E). pose proof (code_unit_nonempty u []) as Hn. rewrite app_nil_r in Hn.
       destruct (lit_code_unit_to_utf8 u) as [| b bs]; [easy |]. cbn [app]. apply Forall_cons in Hp as [Hb _]. now rewrite (proj2 (Z.eqb_neq _ _) Hb). }
  rewrite ascii_cons by (unfold is_ascii; lia). change (negb (37 =? 37)) with false. cbv iota.
  destruct (hex_start units Hu) as [(h & l & rest & -> & Hh & Hl) | ->]; [| now left].
  apply Forall_cons in Hu as [_ Hu]. apply Forall_cons in Hu as [_ Hu]. rewrite !ascii_cons by (now apply hex_digit_ascii).
  destruct (hex_lookup_digits h l _ Hh Hl (encode_bytes rest Hu)) as [-> Hlt]. set (v := hex_value h * 16 + hex_value l) in *.
  destruct ((v =? UINT32_MAX) || _) eqn:Ev; [now left |]. apply orb_false_iff in Ev as [_ Ev]. apply negb_false_iff in Ev.
  change (advance URI_ENCODED_BYTE_SIZE (37 :: h :: l :: cesu8_encode rest)) with (cesu8_encode rest).
  destruct (IH rest (acc ++ [u8 v]) Hu) as [-> | (octets & texts & rest2 & Hlen & -> & Ht & Hx)]; [now left |]. right.
  assert (He : escaped v [37; h; l]) by (now exists h, l). pose proof (proj1 (escaped_byte _ _ He)) as Uv. exists (v :: octets), ([37; h; l] :: texts), rest2. splits; [cbn [length]; now rewrite Hlen | reflexivity | now constructor | constructor; [now split | exact Hx]].
Qed.

(** Octets that are not valid, or not of a character, stop the routine *)
Lemma single_decode b more : is_u8 b -> leads b (S (length more)) -> Forall is_extra more -> lit_is_valid_utf8_string (b :: more) true = true ->
  exists n cp, lit_read_code_point_from_utf8 (b :: more) = Some (n, cp) /\ (lone cp = false -> octets_decode (b :: more) cp).
Proof.
  intros Ub Hlead Hx Hv. assert (Ha : accepted_sequence (b :: more) /\ 128 <= b).
  { apply leads_range in Hlead; [| exact Ub]. split; [| lia]. cbn [lit_is_valid_utf8_string] in Hv. rewrite (proj2 (Z.ltb_ge b 128)) in Hv by lia.
    destruct (Z.ltb_spec b 194); [discriminate |]. destruct Hx as [| c more [Uc Xc] Hx]; [discriminate |]. rewrite Xc in Hv. cbn [negb] in Hv.
    destruct (Z.ltb_spec b 224); [destruct more; [| cbn [length] in Hlead; lia]; apply accepted_two; (assumption || lia) |].
    destruct Hx as [| d more [Ud Xd] Hx]; [discriminate |]. rewrite Xd in Hv. cbn [negb] in Hv.
    destruct (Z.ltb_spec b 240).
    { destruct more; [| cbn [length] in Hlead; lia]. destruct ((b =? 224) && (Z.land c 224 =? 128)) eqn:E; [discriminate |]. apply accepted_three; (assumption || lia). }
    destruct Hx as [| e more [Ue Xe] Hx]; [discriminate |]. destruct more; [| cbn [length] in Hlead; lia].
    destruct ((244 <? b) || _ || _ || _) eqn:E; [discriminate |]. apply accepted_four; (assumption || lia). }
  destruct Ha as [[(cp & Hc & E) | (b2 & b3 & b4 & E & H2 & U3 & U4 & X3 & X4)] Hb].
  - exists (zlength (b :: more)), cp. pose proof (read_code_point_utf8 cp [] Hc) as Hr. rewrite app_nil_r in Hr. rewrite E. split; [exact Hr |]. intros Hlone. left. split; [exact Hlone |].
    split; [| reflexivity]. unfold is_code_point in Hc. split; [| lia]. pose proof (utf8_single cp Hc) as Hs. rewrite <- E in Hs. destruct more; [lia | exact Hs].
  - rewrite E. exists 4, ((b2 - 128) * 4096 + (b3 - 128) * 64 + (b4 - 128)). split; [apply read_overlong; [exact H2 | now split | now split] |].
    intros Hlone. right. split; [exact Hlone |]. now exists b2, b3, b4.
Qed.

(** Every string decodes, or the routine ends with an error *)
Lemma decode_total set n : forall units, (length units <= n)%nat -> Forall is_u16 units ->
  (exists out, leniently_decodes set units out) \/ (exists e, escapes (decode_uri_step set) (cesu8_encode units) (inl e)).
Proof.
  induction n as [| n IH]; intros units Hn Hu; [destruct units; [left; exists []; constructor | cbn in Hn; lia] |].
  destruct Hu as [| u units Uu Hu]; [left; exists []; constructor |]. cbn [length] in Hn.
  destruct (Z.eq_dec u 37) as [-> | Hne].
  2: { destruct (IH units ltac:(lia) Hu) as [[out H] | [e H]]; [left; exists (u :: out); now constructor | right; exists e]. rewrite cesu8_encode_cons. exact (plain_run set _ _ (inl e) (unit_plain u Uu Hne) H). }
  rewrite ascii_cons by (unfold is_ascii; lia).
  destruct (hex_start units Hu) as [(h & l & rest & -> & Hh & Hl) | E].
  2: { right. exists ECMA_ERR_INVALID_HEXADECIMAL_VALUE. apply escapes_error; [discriminate |]. cbn [decode_uri_step]. change (negb (37 =? 37)) with false. cbv iota. now rewrite E. }
  apply Forall_cons in Hu as [_ Hu]. apply Forall_cons in Hu as [_ Hu]. rewrite !ascii_cons by (now apply hex_digit_ascii). cbn [length] in Hn.
  pose proof (encode_bytes rest Hu) as Hb. set (b := hex_value h * 16 + hex_value l). assert (He : escaped b [37; h; l]) by (now exists h, l).
  pose proof (proj1 (escaped_byte _ _ He)) as Ub. destruct (Z.lt_ge_cases b 128) as [Hlt | Hge].
  { destruct (IH rest ltac:(lia) Hu) as [[out H] | [e H]].
    - left. destruct (kept set b) eqn:Ek; [exists (37 :: h :: l :: out); now apply (decodes_kept octets_decode set b) | exists (b :: out); now apply (decodes_ascii octets_decode set b [37; h; l])].
    - right. exists e. exact (decode_ascii_step set h l _ (inl e) Hh Hl Hb Hlt H). }
  destruct (decode_lead_step set h l _ Hh Hl Hb Hge) as [Hlead Hno]. fold b in Hlead, Hno.
  assert (Hone : (exists count, leads b (S (S count))) \/ forall count, ~ leads b count).
  { destruct (Z.ltb_spec b 192); [right; intros count Hc; apply leads_range in Hc; [lia | exact Ub] |]. destruct (Z.ltb_spec b 248); [left | right; intros count Hc; apply leads_range in Hc; [lia | exact Ub]].
    destruct (Z.ltb_spec b 224); [exists 0%nat | destruct (Z.ltb_spec b 240); [exists 1%nat | exists 2%nat]]; apply leads_range; (exact Ub || lia). }
  destruct Hone as [[count Hc] | Hnone]; [| right; exists ECMA_ERR_INVALID_UTF8_CHARACTER; apply escapes_error; [discriminate | now apply Hno]].
  specialize (Hlead _ Hc). cbn [Nat.sub] in Hlead.
  destruct (decode_octets_view (S count) rest [b] Hu) as [E | (octets & texts & rest2 & Hcount & -> & Ht & Hx)].
  { right. exists ECMA_ERR_INVALID_UTF8_STRING. apply escapes_error; [discriminate |]. now rewrite Hlead, E. }
  apply Forall_app in Hu as [Hu1 Hu]. assert (Ha : Forall is_ascii (concat texts)).
  { apply Forall_concat. clear -Ht. induction Ht as [| c t octets texts Hc _ IH]; constructor; [| exact IH]. now apply escaped_byte in Hc. }
  rewrite ascii_app in * by exact Ha. pose proof (decode_octets_spec octets texts Ht Hx (cesu8_encode rest2) [b] (encode_bytes rest2 Hu)) as E. rewrite Hcount in E. rewrite E in Hlead. cbn [app] in Hlead.
  rewrite <- Hcount in Hc. unfold sequence_step in Hlead.
  destruct (lit_is_valid_utf8_string (b :: octets) true) eqn:Ev; cbn [negb] in Hlead; [| right; eexists; apply escapes_error; [discriminate | exact Hlead]].
  destruct (single_decode b octets Ub Hc Hx Ev) as (k & cp & Er & Hd). rewrite Er in Hlead.
  destruct (lone cp); [right; eexists; apply escapes_error; [discriminate | exact Hlead] |]. specialize (Hd eq_refl).
  assert (Hall : Forall2 escaped (b :: octets) ([37; h; l] :: texts)) by (now constructor).
  rewrite length_app in Hn. destruct (IH rest2 ltac:(lia) Hu) as [[out H] | [e H]].
  - left. exists (lit_utf16_encode_code_point cp ++ out). exact (decodes_sequence octets_decode set (b :: octets) ([37; h; l] :: texts) cp rest2 out Hall Hd H).
  - right. exists e. exact (sequence_run set (b :: octets) ([37; h; l] :: texts) cp _ (inl e) Hall Hd (encode_bytes rest2 Hu) H).
Qed.

(** Decoding is a partial function *)
Lemma decodes_unique set units out out' : Forall is_u16 units -> leniently_decodes set units out -> leniently_decodes set units out' -> out = out'.
Proof.
  intros Hu H H'. destruct (decode_complete set units out H Hu) as [U E]. destruct (decode_complete set units out' H' Hu) as [U' E'].
  pose proof (escapes_unique _ _ _ E _ E') as Eq. injection Eq as Eq. symmetry. now apply encode_inj.
Qed.

(** ** Decoding what was encoded *)

Lemma percent_escaped b : is_u8 b -> escaped b (percent b).
Proof.
  intros Hb. unfold is_u8 in Hb. destruct (upper_hex_digit (b / 16) ltac:(Z.div_mod_to_equations; lia)) as (H1 & E1 & R1). destruct (upper_hex_digit (b mod 16) ltac:(Z.div_mod_to_equations; lia)) as (H2 & E2 & R2).
  exists (upper_hex (b / 16)), (upper_hex (b mod 16)). splits; [reflexivity | split; [unfold is_u8; lia | exact H1] | split; [unfold is_u8; lia | exact H2] |]. rewrite E1, E2. Z.div_mod_to_equations; lia.
Qed.

Lemma percents_escaped octets : Forall is_u8 octets -> Forall2 escaped octets (map percent octets).
Proof. induction 1 as [| b octets Hb _ IH]; constructor; [now apply percent_escaped | exact IH]. Qed.

Lemma utf16_unit u : is_u16 u -> lit_utf16_encode_code_point u = [u].
Proof.
  intros Hu. unfold lit_utf16_encode_code_point, LIT_UTF16_CODE_UNIT_MAX. unfold is_u16 in Hu. rewrite (proj2 (Z.leb_le _ _)) by lia.
  unfold u16. now rewrite Z.mod_small by lia.
Qed.

Lemma utf16_pair_units h l : is_high h -> is_low l -> lit_utf16_encode_code_point (pair_code_point h l) = [h; l].
Proof.
  intros Hh Hl. destruct (pair_value h l Hh Hl) as (_ & _ & E1 & E2 & Hr). unfold lit_utf16_encode_code_point, LIT_UTF16_CODE_UNIT_MAX.
  rewrite (proj2 (Z.leb_gt _ _)) by lia. now rewrite E1, E2.
Qed.

(** The encoding of one character decodes to it, when what the encoder escapes is nothing that the decoder keeps *)
Lemma character_decodes set cp rest out : is_code_point cp -> lone cp = false -> is_in 37 set = false -> leniently_decodes set rest out ->
  leniently_decodes set (escape_code_point set cp ++ rest) (lit_utf16_encode_code_point cp ++ out).
Proof.
  intros Hc Hl H37 H. unfold is_code_point in Hc. unfold escape_code_point. destruct (Z.ltb_spec cp 128) as [Hlt | Hge]; cbn [andb].
  - rewrite utf16_unit by (unfold is_u16; lia). cbn [app]. destruct (is_in cp set) eqn:Ei.
    + constructor; [intros ->; congruence | exact H].
    + rewrite code_point_to_utf8_unit, ascii_unit by (unfold is_ascii; lia). cbn [map concat]. rewrite app_nil_r.
      apply (decodes_ascii octets_decode set cp); [apply percent_escaped; unfold is_u8; lia | lia | unfold kept; now rewrite Ei | exact H].
  - apply (decodes_sequence octets_decode set (lit_code_point_to_utf8 cp)); [apply percents_escaped, utf8_bytes; exact Hc | | exact H]. left. split; [exact Hl |]. split; [lia | reflexivity].
Qed.

Lemma decode_encoded set units : Forall is_u16 units -> is_in 37 set = false -> existsb lone (code_points units) = false ->
  leniently_decodes set (concat (map (escape_code_point set) (code_points units))) units.
Proof.
  intros Hu H37. revert Hu. induction units as [| h l units Hh Hl IH | u units N IH] using code_points_ind; intros Hu Hlone; [constructor | |].
  - apply Forall_cons in Hu as [Uh Hu]. apply Forall_cons in Hu as [Ul Hu]. rewrite code_points_pair in * by assumption. cbn [existsb map concat] in *. apply orb_false_iff in Hlone as [L1 L2].
    change (h :: l :: units) with ([h; l] ++ units). rewrite <- (utf16_pair_units h l) by assumption. destruct (pair_value h l Hh Hl) as (_ & _ & _ & _ & Hr).
    apply character_decodes; [unfold is_code_point; lia | exact L1 | exact H37 | now apply IH].
  - apply Forall_cons in Hu as [Uu Hu]. rewrite code_points_single in * by assumption. cbn [existsb map concat] in *. apply orb_false_iff in Hlone as [L1 L2].
    change (u :: units) with ([u] ++ units). rewrite <- (utf16_unit u) by assumption. unfold is_u16 in Uu.
    apply character_decodes; [unfold is_code_point; lia | exact L1 | exact H37 | now apply IH].
Qed.

(** The encoding is ASCII *)
Lemma percents_ascii octets : Forall is_u8 octets -> Forall is_ascii (concat (map percent octets)).
Proof.
  intros H. apply percents_escaped in H. apply Forall_concat. induction H as [| b t octets texts Hb _ IH]; constructor; [| exact IH]. now apply escaped_byte in Hb.
Qed.

Lemma escapes_ascii set cps : Forall is_code_point cps -> Forall is_ascii (concat (map (escape_code_point set) cps)).
Proof.
  induction 1 as [| cp cps Hc _ IH]; [constructor |]. cbn [map concat]. apply Forall_app. split; [| exact IH]. unfold escape_code_point.
  destruct (Z.ltb_spec cp 128); cbn [andb]; [destruct (is_in cp set) |]; [constructor; [unfold is_code_point in Hc; unfold is_ascii; lia | constructor] | |]; now apply percents_ascii, utf8_bytes.
Qed.

Lemma code_points_range units : Forall is_u16 units -> Forall is_code_point (code_points units).
Proof.
  induction units as [| h l units Hh Hl IH | u units N IH] using code_points_ind; intros Hu; [constructor | |].
  - apply Forall_cons in Hu as [Uh Hu]. apply Forall_cons in Hu as [Ul Hu]. rewrite code_points_pair by assumption. constructor; [| now apply IH].
    destruct (pair_value h l Hh Hl) as (_ & _ & _ & _ & Hr). unfold is_code_point. lia.
  - apply Forall_cons in Hu as [Uu Hu]. rewrite code_points_single by assumption. constructor; [unfold is_u16 in Uu; unfold is_code_point; lia | now apply IH].
Qed.

(** ** escape and unescape *)

Definition escape_unit (u : Z) : list Z :=
  if (u <? 128) && is_in u ecma_escape_set then [u]
  else if u <? 256 then percent u
  else 37 :: 117 :: map upper_hex [u / 4096; u / 256 mod 16; u / 16 mod 16; u mod 16].

Definition digit (c : Z) : bool := (c <? 128) && lit_char_is_hex_digit c.
Definition hex_number (digits : list Z) : Z := fold_left (fun v c => v * 16 + hex_value c) digits 0.

(** The escape after a percent sign: its code unit and the number of its characters *)
Definition unit_escape (units : list Z) : option (Z * nat) :=
  match units with
  | x :: y :: more =>
      if x =? 117 then
        match more with
        | b :: c :: d :: _ => if forallb digit [y; b; c; d] then Some (hex_number [y; b; c; d], 5%nat) else None
        | _ => None
        end
      else if forallb digit [x; y] then Some (hex_number [x; y], 2%nat) else None
  | _ => None
  end.

Fixpoint unescape_units (fuel : nat) (units : list Z) : list Z :=
  match fuel, units with
  | S fuel, u :: rest =>
      if u =? 37 then
        match unit_escape rest with
        | Some (v, n) => v :: unescape_units fuel (skipn n rest)
        | None => 37 :: unescape_units fuel rest
        end
      else u :: unescape_units fuel rest
  | _, _ => []
  end.

Lemma escape_unit_step u rest : is_u16 u -> exists parts, escape_step (lit_code_unit_to_utf8 u ++ rest) = APPEND parts rest
  /\ parts_text parts = escape_unit u /\ Forall plain_part parts /\ Forall is_ascii (escape_unit u) /\ zlength (escape_unit u) <= 3 * zlength (lit_code_unit_to_utf8 u).
Proof.
  intros Hu. pose proof (code_unit_length u) as Hl. unfold escape_step. rewrite read_code_unit by exact Hu. rewrite advance_unit. unfold escape_unit, LIT_UTF8_1_BYTE_CODE_POINT_MAX, ECMA_ESCAPE_MAXIMUM_BYTE_VALUE. unfold is_u16 in Hu.
  assert (Hp : forall b, is_u8 b -> Forall is_ascii (percent b)) by (intros b Hb; exact (proj2 (escaped_byte _ _ (percent_escaped b Hb)))).
  assert (R : forall b, is_u8 b -> parts_text [RAW (ecma_builtin_global_object_byte_to_hex b)] = percent b).
  { intros b Hb. unfold parts_text. cbn [map part_text concat]. now rewrite app_nil_r, byte_to_hex. }
  destruct (Z.ltb_spec u 128) as [H1 | H1]; cbn [andb].
  - rewrite (proj2 (Z.leb_le u 127)) by lia. destruct (is_in u ecma_escape_set); eexists; (split; [reflexivity |]).
    + splits; [unfold parts_text; cbn [map part_text concat]; rewrite app_nil_r; apply ascii_unit; unfold is_ascii; lia | constructor; [unfold plain_part, is_u16; lia | apply List.Forall_nil] | constructor; [unfold is_ascii; lia | constructor] | change (zlength [u]) with 1; lia].
    + rewrite (proj2 (Z.ltb_lt u 256)) by lia. splits; [apply R; unfold is_u8; lia | constructor; [exact I | apply List.Forall_nil] | apply Hp; unfold is_u8; lia | change (zlength (percent u)) with 3; lia].
  - rewrite (proj2 (Z.leb_gt u 127)) by lia. destruct (Z.ltb_spec u 256) as [H2 | H2].
    + rewrite (proj2 (Z.ltb_ge 255 u)) by lia. eexists. split; [reflexivity |]. splits; [apply R; unfold is_u8; lia | constructor; [exact I | apply List.Forall_nil] | apply Hp; unfold is_u8; lia | change (zlength (percent u)) with 3; lia].
    + rewrite (proj2 (Z.ltb_lt 255 u)) by lia. eexists. split; [reflexivity |]. rewrite Z.shiftr_div_pow2, (land_ones' u 8 255) by (reflexivity || lia). change (2 ^ 8) with 256.
      assert (U1 : is_u8 (u / 256)) by (unfold is_u8; Z.div_mod_to_equations; lia). assert (U2 : is_u8 (u mod 256)) by (unfold is_u8; Z.div_mod_to_equations; lia).
      rewrite !byte_to_hex by assumption. unfold percent. cbn [skipn].
      replace (u / 256 / 16) with (u / 4096) by (Z.div_mod_to_equations; lia). replace (u mod 256 / 16) with (u / 16 mod 16) by (Z.div_mod_to_equations; lia).
      replace (u mod 256 mod 16) with (u mod 16) by (Z.div_mod_to_equations; lia).
      assert (H3 : zlength (lit_code_unit_to_utf8 u) >= 2).
      { rewrite code_unit_bytes by (unfold is_u16; lia). unfold unit_bytes. rewrite (proj2 (Z.ltb_ge u 128)) by lia. destruct (u <? 2048); rewrite !zlength_cons, (@zlength_nil Z); lia. }
      assert (A : forall v, 0 <= v < 16 -> is_ascii (upper_hex v)) by (intros v Hv; destruct (upper_hex_digit v Hv) as (_ & _ & ?); unfold is_ascii; lia).
      splits; [reflexivity | | | cbn [map]; rewrite !zlength_cons, (@zlength_nil Z); lia].
      * constructor; [unfold plain_part, is_u16; lia |]. constructor; [unfold plain_part, is_u16; lia |]. constructor; [exact I |]. constructor; [exact I | apply List.Forall_nil].
      * constructor; [unfold is_ascii; lia |]. constructor; [unfold is_ascii; lia |]. cbn [map]. repeat (apply Forall_cons; split; [apply A; Z.div_mod_to_equations; lia |]). constructor.
Qed.

Lemma escape_spec units : Forall is_u16 units -> escapes escape_step (cesu8_encode units) (inr (concat (map escape_unit units))) /\ Forall is_ascii (concat (map escape_unit units)).
Proof.
  induction 1 as [| u units Hu _ [IH1 IH2]]; [split; [apply escapes_end | constructor] |]. rewrite cesu8_encode_cons. cbn [map concat].
  destruct (escape_unit_step u (cesu8_encode units) Hu) as (parts & E & Et & Hp & Ha & Hs). split; [| now apply Forall_app].
  pose proof (code_unit_length u). change (escapes escape_step (lit_code_unit_to_utf8 u ++ cesu8_encode units) (prepend (escape_unit u) (inr (concat (map escape_unit units))))). rewrite <- Et in *.
  apply (escapes_step _ _ _ (cesu8_encode units)); [exact E | exact Hp | rewrite zlength_app; lia | rewrite zlength_app; lia | exact IH1].
Qed.

Lemma digit_value c : is_u8 c -> digit c = lit_char_is_hex_digit c.
Proof.
  intros Hc. unfold digit. destruct (lit_char_is_hex_digit c) eqn:E; [| now rewrite andb_false_r]. destruct (hex_byte c Hc E) as (H & _). now rewrite (proj2 (Z.ltb_lt _ _) H).
Qed.

Lemma digit_hex c : 0 <= c -> digit c = true -> hex_digit c.
Proof. unfold digit. intros H0 H. apply andb_prop in H as [H1 H2]. apply Z.ltb_lt in H1. split; [unfold is_u8; lia | exact H2]. Qed.

Lemma resolve_spec n : forall buf v, (n <= length buf)%nat -> Forall is_u8 buf -> 0 <= v -> v * 16 ^ Z.of_nat n + 16 ^ Z.of_nat n <= 65536 ->
  resolve_digits n buf v = Some (if forallb digit (firstn n buf) then Some (fold_left (fun v c => v * 16 + hex_value c) (firstn n buf) v) else None).
Proof.
  induction n as [| n IH]; intros buf v Hn Hb Hv Hs; [reflexivity |]. destruct Hb as [| c buf Hc Hb]; [cbn in Hn; lia |]. cbn [resolve_digits firstn forallb fold_left].
  rewrite digit_value by exact Hc. destruct (lit_char_is_hex_digit c) eqn:E; cbn [negb andb]; [| reflexivity].
  destruct (hex_byte c Hc E) as (_ & -> & Hr). rewrite Nat2Z.inj_succ, Z.pow_succ_r in Hs by lia. assert (0 < 16 ^ Z.of_nat n) by (apply Z.pow_pos_nonneg; lia).
  assert (H16 : v * 16 + 16 <= 65536) by nia. rewrite Z.shiftl_mul_pow2 by lia. change (2 ^ 4) with 16.
  unfold u16. rewrite (Z.mod_small (v * 16)), (Z.mod_small (hex_value c)), (Z.mod_small (v * 16 + hex_value c)) by lia.
  apply IH; [cbn in Hn; lia | exact Hb | lia | nia].
Qed.

Lemma firstn_split {A} n (l : list A) : (n <= length l)%nat -> exists a s, l = a ++ s /\ length a = n /\ firstn n l = a /\ skipn n l = s.
Proof. intros H. exists (firstn n l), (skipn n l). splits; [now rewrite firstn_skipn | rewrite length_firstn; lia | reflexivity | reflexivity]. Qed.

Lemma resolve_step chr buf (unicode : bool) : (if unicode then (5 <= length buf)%nat else (2 <= length buf)%nat) -> Forall is_u8 buf ->
  ecma_builtin_global_object_unescape_resolve_escape buf unicode chr
  = Some (let digits := if unicode then firstn 4 (skipn 1 buf) else firstn 2 buf in if forallb digit digits then (if unicode then 5 else 2, hex_number digits) else (0, chr)).
Proof.
  intros Hn Hb. unfold ecma_builtin_global_object_unescape_resolve_escape. destruct unicode.
  - rewrite resolve_spec; [| rewrite length_skipn; lia | apply Forall_drop; exact Hb | lia | now vm_compute]. cbv zeta. unfold hex_number. now destruct (forallb digit _).
  - rewrite resolve_spec; [| lia | exact Hb | lia | now vm_compute]. cbv zeta. unfold hex_number. now destruct (forallb digit _).
Qed.

(** The step after a percent sign is the escape the bytes start with *)
Lemma unescape_percent buf : Forall is_u8 buf ->
  unescape_step (37 :: buf) = match unit_escape buf with Some (v, n) => APPEND [CHAR v] (skipn n buf) | None => APPEND [CHAR 37] buf end.
Proof.
  intros Hb. unfold unescape_step. pose proof (read_code_unit 37 buf ltac:(unfold is_u16; lia)) as E. rewrite ascii_unit in E by (unfold is_ascii; lia). cbn [app] in E. rewrite E.
  change (advance (zlength [37]) (37 :: buf)) with buf. change (37 =? 37) with true. cbv iota zeta.
  assert (Z0 : forall c, APPEND [CHAR c] (advance 0 buf) = APPEND [CHAR c] buf) by reflexivity.
  destruct buf as [| x [| y more]]; [apply Z0 | apply Z0 |]. set (buf := x :: y :: more) in *. change (nth 0 buf 0) with x.
  assert (UE : unit_escape buf = if x =? 117 then match more with b :: c :: d :: _ => if forallb digit [y; b; c; d] then Some (hex_number [y; b; c; d], 5%nat) else None | _ => None end
    else if forallb digit [x; y] then Some (hex_number [x; y], 2%nat) else None) by reflexivity. rewrite UE.
  assert (H2 : 2 <=? zlength buf = true) by (apply Z.leb_le; unfold buf; rewrite !zlength_cons; pose proof (zlength_nonneg more); lia). rewrite H2.
  assert (Two : x =? 117 = true -> forallb digit (firstn 2 buf) = false) by (intros Hx; apply Z.eqb_eq in Hx; unfold buf; rewrite Hx; reflexivity).
  destruct (Z.leb_spec 5 (zlength buf)) as [H5 | H5]; cbn [andb].
  - destruct more as [| b [| c [| d more]]]; [discriminate H5 + easy | discriminate H5 + easy | discriminate H5 + easy |].
    destruct (x =? 117).
    + rewrite (resolve_step 37 buf true) by (exact Hb || (unfold buf; cbn [length]; lia)). cbv zeta. change (firstn 4 (skipn 1 buf)) with [y; b; c; d]. now destruct (forallb digit [y; b; c; d]).
    + rewrite (resolve_step 37 buf false) by (exact Hb || (unfold buf; cbn [length]; lia)). cbv zeta. change (firstn 2 buf) with [x; y]. now destruct (forallb digit [x; y]).
  - rewrite (resolve_step 37 buf false) by (exact Hb || (unfold buf; cbn [length]; lia)). cbv zeta. destruct (x =? 117) eqn:Ex.
    + rewrite (Two eq_refl). destruct more as [| b [| c [| d more]]]; [reflexivity | reflexivity | reflexivity | unfold buf in H5; rewrite !zlength_cons in H5; pose proof (zlength_nonneg more); lia].
    + change (firstn 2 buf) with [x; y]. now destruct (forallb digit [x; y]).
Qed.

Lemma ascii_start a : Forall is_ascii a -> forall units s, Forall is_u16 units -> cesu8_encode units = a ++ s -> exists rest, units = a ++ rest /\ Forall is_u16 rest /\ cesu8_encode rest = s.
Proof.
  induction 1 as [| c a Hc _ IH]; intros units s Hu E; [now exists units |]. destruct Hu as [| u units Uu Hu]; [discriminate |].
  rewrite cesu8_encode_cons, code_unit_bytes in E by exact Uu. unfold is_u16, is_ascii in *. unfold unit_bytes in E.
  destruct (Z.ltb_spec u 128); [| destruct (Z.ltb_spec u 2048); injection E as E1 _; exfalso; revert E1; Z.div_mod_to_equations; lia].
  injection E as -> E. destruct (IH units s Hu E) as (rest & -> & Hr & <-). now exists rest.
Qed.

Lemma escape_prefix l v n : Forall (Z.le 0) l -> unit_escape l = Some (v, n) ->
  exists a s, l = a ++ s /\ length a = n /\ Forall is_ascii a /\ is_u16 v /\ forall s', unit_escape (a ++ s') = Some (v, n).
Proof.
  intros H0 E. destruct H0 as [| x l Hx H0]; [discriminate |]. destruct H0 as [| y l Hy H0]; [discriminate |]. cbn [unit_escape] in E.
  destruct (Z.eqb_spec x 117) as [-> | Hne].
  - destruct H0 as [| b l Hb H0]; [discriminate |]. destruct H0 as [| c l Hc H0]; [discriminate |]. destruct H0 as [| d l Hd H0]; [discriminate |].
    destruct (forallb digit [y; b; c; d]) eqn:Ed; [| discriminate]. pose proof Ed as Ed'. injection E as <- <-. cbn [forallb] in Ed'.
    apply andb_prop in Ed' as [Dy Ed']. apply andb_prop in Ed' as [Db Ed']. apply andb_prop in Ed' as [Dc Ed']. apply andb_prop in Ed' as [Dd _].
    apply digit_hex in Dy, Db, Dc, Dd; try assumption.
    exists [117; y; b; c; d], l. splits; [reflexivity | reflexivity | | | intros s'; cbn [app unit_escape]; change (117 =? 117) with true; cbv iota; now rewrite Ed].
    + constructor; [unfold is_ascii; lia |]. repeat (apply Forall_cons; split; [now apply hex_digit_ascii |]). constructor.
    + unfold hex_number. cbn [fold_left]. pose proof (hex_byte y (proj1 Dy) (proj2 Dy)). pose proof (hex_byte b (proj1 Db) (proj2 Db)). pose proof (hex_byte c (proj1 Dc) (proj2 Dc)). pose proof (hex_byte d (proj1 Dd) (proj2 Dd)).
      unfold is_u16. lia.
  - destruct (forallb digit [x; y]) eqn:Ed; [| discriminate]. pose proof Ed as Ed'. injection E as <- <-. cbn [forallb] in Ed'.
    apply andb_prop in Ed' as [Dx Ed']. apply andb_prop in Ed' as [Dy _]. apply digit_hex in Dx, Dy; try assumption.
    exists [x; y], l. splits; [reflexivity | reflexivity | | | intros s'; cbn [app unit_escape]; rewrite (proj2 (Z.eqb_neq _ _) Hne); now rewrite Ed].
    + repeat (apply Forall_cons; split; [now apply hex_digit_ascii |]). constructor.
    + unfold hex_number. cbn [fold_left]. pose proof (hex_byte y (proj1 Dy) (proj2 Dy)). pose proof (hex_byte x (proj1 Dx) (proj2 Dx)). unfold is_u16. lia.
Qed.

(** The escape is the same in the bytes and in the code units *)
Lemma escape_encoded units : Forall is_u16 units -> unit_escape (cesu8_encode units) = unit_escape units
  /\ forall v n, unit_escape units = Some (v, n) -> skipn n (cesu8_encode units) = cesu8_encode (skipn n units) /\ is_u16 v /\ (2 <= n <= 5)%nat /\ (n <= length units)%nat.
Proof.
  intros Hu. assert (H0 : forall l, Forall is_u16 l -> Forall (Z.le 0) l) by (intros l Hl; eapply List.Forall_impl; [| exact Hl]; unfold is_u16; lia).
  assert (H8 : Forall (Z.le 0) (cesu8_encode units)) by (eapply List.Forall_impl; [| exact (encode_bytes units Hu)]; unfold is_u8; lia).
  split.
  - destruct (unit_escape (cesu8_encode units)) as [[v n] |] eqn:E.
    + destruct (escape_prefix _ v n H8 E) as (a & s & El & _ & Ha & _ & Hs). destruct (ascii_start a Ha units s Hu El) as (rest & -> & _ & _). symmetry. apply Hs.
    + destruct (unit_escape units) as [[v n] |] eqn:E'; [| reflexivity]. destruct (escape_prefix _ v n (H0 _ Hu) E') as (a & s & -> & _ & Ha & _ & Hs).
      rewrite ascii_app in E by exact Ha. now rewrite Hs in E.
  - intros v n E. pose proof E as E1. destruct (escape_prefix _ v n (H0 _ Hu) E) as (a & s & -> & <- & Ha & Hv & Hs). rewrite ascii_app by exact Ha. rewrite !drop_app_length.
    splits; [reflexivity | exact Hv | | | rewrite length_app; lia];
      (clear -E1; unfold unit_escape in E1; destruct (a ++ s) as [| x [| y more]]; try discriminate; destruct (x =? 117); [destruct more as [| b [| c [| d more]]]; try discriminate; destruct (forallb digit [y; b; c; d]) | destruct (forallb digit [x; y])]; try discriminate; injection E1 as _ <-; lia).
Qed.

Lemma char_step body before c rest r : is_u16 c -> body before = APPEND [CHAR c] rest -> zlength rest < zlength before -> escapes body rest r ->
  escapes body before (prepend (lit_code_unit_to_utf8 c) r).
Proof.
  intros Hc E Hlt H. pose proof (code_unit_length c). assert (Et : lit_code_unit_to_utf8 c = parts_text [CHAR c]) by (symmetry; apply app_nil_r). rewrite Et in *.
  apply (escapes_step _ _ _ rest); [exact E | constructor; [exact Hc | apply List.Forall_nil] | exact Hlt | lia | exact H].
Qed.

Lemma unescape_spec fuel : forall units, (length units <= fuel)%nat -> Forall is_u16 units ->
  escapes unescape_step (cesu8_encode units) (inr (cesu8_encode (unescape_units fuel units))) /\ Forall is_u16 (unescape_units fuel units).
Proof.
  induction fuel as [| fuel IH]; intros units Hn Hu; [destruct units; [split; [apply escapes_end | constructor] | cbn in Hn; lia] |].
  destruct Hu as [| u units Uu Hu]; [split; [apply escapes_end | constructor] |]. cbn [length] in Hn. cbn [unescape_units].
  assert (Step : forall c rest, is_u16 c -> (length rest <= fuel)%nat -> Forall is_u16 rest -> zlength (cesu8_encode rest) < zlength (cesu8_encode (u :: units)) ->
    unescape_step (cesu8_encode (u :: units)) = APPEND [CHAR c] (cesu8_encode rest) ->
    escapes unescape_step (cesu8_encode (u :: units)) (inr (cesu8_encode (c :: unescape_units fuel rest))) /\ Forall is_u16 (c :: unescape_units fuel rest)).
  { intros c rest Uc Hlen Hrest Hlt E. destruct (IH rest Hlen Hrest) as [IH1 IH2]. split; [| now constructor]. rewrite (cesu8_encode_cons c). exact (char_step _ _ c _ _ Uc E Hlt IH1). }
  pose proof (code_unit_length u) as Hl. destruct (Z.eqb_spec u 37) as [-> | Hne].
  - rewrite ascii_cons in * by (unfold is_ascii; lia). destruct (escape_encoded units Hu) as [E1 E2]. pose proof (unescape_percent _ (encode_bytes units Hu)) as E. rewrite E1 in E.
    destruct (unit_escape units) as [[v n] |].
    + destruct (E2 v n eq_refl) as (Es & Hv & Hn2 & Hn3). rewrite Es in E. apply Step; [exact Hv | rewrite length_skipn; lia | now apply Forall_drop | | exact E].
      rewrite <- Es, zlength_cons. unfold zlength. rewrite length_skipn. lia.
    + apply Step; [unfold is_u16; lia | lia | exact Hu | rewrite zlength_cons; lia | exact E].
  - apply Step; [exact Uu | lia | exact Hu | rewrite cesu8_encode_cons, zlength_app; lia |]. unfold unescape_step. rewrite cesu8_encode_cons, read_code_unit by exact Uu. rewrite advance_unit.
    now rewrite (proj2 (Z.eqb_neq _ _) Hne).
Qed.

Lemma digit_upper v : 0 <= v < 16 -> digit (upper_hex v) = true /\ hex_value (upper_hex v) = v /\ upper_hex v <> 117.
Proof. intros Hv. destruct (upper_hex_digit v Hv) as (H1 & H2 & H3). splits; [| exact H2 | lia]. unfold digit. rewrite (proj2 (Z.ltb_lt _ _)) by lia. exact H1. Qed.

Lemma percent_unescaped u rest units fuel : 0 <= u < 256 -> (forall fuel, (length rest <= fuel)%nat -> unescape_units fuel rest = units) ->
  (length (percent u) + length rest <= fuel)%nat -> unescape_units fuel (percent u ++ rest) = u :: units.
Proof.
  intros Hu H Hf. destruct fuel as [| fuel]; [cbn in Hf; lia |]. destruct (digit_upper (u / 16) ltac:(Z.div_mod_to_equations; lia)) as (D1 & V1 & N1). destruct (digit_upper (u mod 16) ltac:(Z.div_mod_to_equations; lia)) as (D2 & V2 & _).
  unfold percent. cbn [app unescape_units unit_escape]. change (37 =? 37) with true. cbv iota. rewrite (proj2 (Z.eqb_neq _ 117) N1). cbn [forallb]. rewrite D1, D2. cbn [andb].
  unfold hex_number. cbn [fold_left skipn]. rewrite V1, V2, H by (cbn in Hf; lia). f_equal. Z.div_mod_to_equations; lia.
Qed.

Lemma unescape_escaped units : Forall is_u16 units -> forall fuel, (length (concat (map escape_unit units)) <= fuel)%nat -> unescape_units fuel (concat (map escape_unit units)) = units.
Proof.
  induction 1 as [| u units Hu _ IH]; intros fuel Hf; [now destruct fuel |]. cbn [map concat] in *. rewrite length_app in Hf. set (rest := concat (map escape_unit units)) in *. unfold is_u16 in Hu.
  unfold escape_unit in *. destruct (Z.ltb_spec u 128) as [H1 | H1]; cbn [andb] in *.
  - destruct (is_in u ecma_escape_set) eqn:Ei.
    + destruct fuel as [| fuel]; [cbn in Hf; lia |]. cbn [app unescape_units]. rewrite (proj2 (Z.eqb_neq u 37)); [| intros ->; discriminate]. f_equal. apply IH. cbn in Hf; lia.
    + rewrite (proj2 (Z.ltb_lt u 256)) in * by lia. apply percent_unescaped; [lia | exact IH | exact Hf].
  - destruct (Z.ltb_spec u 256); [apply percent_unescaped; [lia | exact IH | exact Hf] |].
    destruct fuel as [| fuel]; [cbn in Hf; lia |]. cbn [map app unescape_units unit_escape]. change (37 =? 37) with true. change (117 =? 117) with true. cbv iota.
    destruct (digit_upper (u / 4096) ltac:(Z.div_mod_to_equations; lia)) as (D1 & V1 & _). destruct (digit_upper (u / 256 mod 16) ltac:(Z.div_mod_to_equations; lia)) as (D2 & V2 & _).
    destruct (digit_upper (u / 16 mod 16) ltac:(Z.div_mod_to_equations; lia)) as (D3 & V3 & _). destruct (digit_upper (u mod 16) ltac:(Z.div_mod_to_equations; lia)) as (D4 & V4 & _).
    cbn [forallb]. rewrite D1, D2, D3, D4. cbn [andb]. unfold hex_number. cbn [fold_left skipn]. rewrite V1, V2, V3, V4, IH by (cbn in Hf; lia). f_equal. Z.div_mod_to_equations; lia.
Qed.

(** A finding: decodeURI turns the overlong four-byte sequence F0 81 80 80 into U+1000,
    where the language has a URIError *)
Lemma overlong_is_decoded set : octets_decode [240; 129; 128; 128] 4096 /\ lit_code_point_to_utf8 4096 <> [240; 129; 128; 128]
  /\ leniently_decodes set (concat (map percent [240; 129; 128; 128])) [4096].
Proof.
  assert (Hd : octets_decode [240; 129; 128; 128] 4096).
  { right. split; [reflexivity |]. exists 129, 128, 128. splits; (reflexivity || lia || (unfold is_u8; lia)). }
  splits; [exact Hd | discriminate |]. rewrite <- (app_nil_r (concat _)). change [4096] with (lit_utf16_encode_code_point 4096 ++ []).
  apply (decodes_sequence octets_decode set [240; 129; 128; 128]); [apply percents_escaped; repeat constructor; discriminate | exact Hd | constructor].
Qed.

(** unescape, with its branch for the empty string *)
Lemma unescape_delivers {BH : BlockHeap} T held (w : world content) units : tables_ok T -> tables_direct T -> good held w ->
  Forall is_u16 units -> fits_32 (3 * zlength (cesu8_encode units)) ->
  runs (ecma_builtin_global_object_unescape T (cesu8_encode units)) w (delivers T held w (inr (cesu8_encode (unescape_units (length units) units)))).
Proof.
  intros HT HD Hgood Hu Hfit. destruct (unescape_spec _ units (Nat.le_refl _) Hu) as [Hd Ut]. unfold ecma_builtin_global_object_unescape. destruct (cesu8_encode units) as [| c s] eqn:E.
  - destruct units as [| u units]; [| rewrite cesu8_encode_cons in E; now apply code_unit_nonempty in E]. apply runs_ret. exact (made_empty T HT held w Hgood).
  - apply (routine_spec T HT HD held w _ _ _ Hd); [eexists; split; [exact Ut | reflexivity] | exact Hgood | exact Hfit].
Qed.

(** ** Properties *)

(** C27: encodeURI and encodeURIComponent on every string: without a lone surrogate
    the result is the string in which each character outside of the set is the
    upper-case percent escapes of its UTF-8 bytes, with one URIError exactly for a
    lone surrogate, which leaves no block behind; the sets are those of the language. *)
Theorem encode_uri_correct {BH : BlockHeap} T held (w : world content) set units : tables_ok T -> tables_direct T -> good held w ->
  Forall is_u16 units -> fits_32 (3 * zlength (cesu8_encode units)) ->
  runs (ecma_builtin_global_object_encode_uri_helper T (cesu8_encode units) set) w (delivers T held w (encode_text set (code_points units)))
  /\ forall c, 0 <= c < 128 -> is_in c unescaped_uri_component_set = is_alphanumeric c || existsb (Z.eqb c) uri_mark
    /\ is_in c unescaped_uri_set = is_alphanumeric c || existsb (Z.eqb c) uri_mark || existsb (Z.eqb c) uri_reserved.
Proof.
  intros HT HD Hgood Hu Hfit. split; [| intros c Hc; destruct (sets_hold c Hc) as (H1 & H2 & _); now split].
  apply (routine_spec T HT HD held w _ _ _ (encode_spec set units Hu)); [| exact Hgood | exact Hfit].
  unfold encode_text. destruct (existsb lone (code_points units)); [exact I |]. apply text_ascii, escapes_ascii, code_points_range, Hu.
Qed.

(** C28: decodeURI and decodeURIComponent on every string: the result is the text the
    string decodes to, one escape or one sequence of escapes after the other, with
    the escapes of reserved characters kept; a URIError is exactly the case that no
    text decodes, and leaves no block behind.  On strings without the escapes of an
    overlong sequence (F0 81 to F0 8F) decoding is that of the language, from UTF-8.
    The code decodes these sequences too, where the language has a URIError, and on
    all strings its result is that of decoding with them.  Both decodings are
    partial functions, and every text of the language is delivered. *)
Theorem decode_uri_correct {BH : BlockHeap} T held (w : world content) set units : tables_ok T -> tables_direct T -> good held w ->
  Forall is_u16 units -> fits_32 (3 * zlength (cesu8_encode units)) ->
  exists r, runs (ecma_builtin_global_object_decode_uri_helper T (cesu8_encode units) set) w (delivers T held w r)
    /\ (~ has_overlong units -> match r with
       | inr s => exists out, decodes set units out /\ (forall out', decodes set units out' -> out' = out) /\ Forall is_u16 out /\ s = cesu8_encode out
       | inl _ => forall out, ~ decodes set units out
       end)
    /\ (forall out, decodes set units out -> r = inr (cesu8_encode out))
    /\ match r with
       | inr s => exists out, leniently_decodes set units out /\ (forall out', leniently_decodes set units out' -> out' = out) /\ s = cesu8_encode out
       | inl _ => forall out, ~ leniently_decodes set units out
       end.
Proof.
  intros HT HD Hgood Hu Hfit. destruct (decode_total set _ units (Nat.le_refl _) Hu) as [[out H] | [e H]].
  - destruct (decode_complete set units out H Hu) as [U E]. assert (Hone : forall out', leniently_decodes set units out' -> out' = out) by (intros out' H'; exact (decodes_unique set units out' out Hu H' H)).
    exists (inr (cesu8_encode out)). splits.
    + apply (routine_spec T HT HD held w _ _ _ E); [now exists out | exact Hgood | exact Hfit].
    + intros Hno. exists out. splits; [now apply leniently_decodes_only | | exact U | reflexivity]. intros out' H'. now apply Hone, decodes_leniently.
    + intros out' H'. now rewrite (Hone out' (decodes_leniently _ _ _ H')).
    + exists out. now splits.
  - assert (Hnone : forall out, ~ leniently_decodes set units out).
    { intros out Hd. destruct (decode_complete set units out Hd Hu) as [_ E]. pose proof (escapes_unique _ _ _ E _ H). discriminate. }
    exists (inl e). splits; [apply (routine_spec T HT HD held w _ _ _ H I Hgood Hfit) | | | exact Hnone].
    + intros _ out Hd. now apply (Hnone out), decodes_leniently.
    + intros out Hd. exfalso. now apply (Hnone out), decodes_leniently.
Qed.

(** C29: decodeURI inverts encodeURI, and decodeURIComponent encodeURIComponent, on
    every string without lone surrogates: the decoder delivers the original string. *)
Theorem uri_roundtrip {BH : BlockHeap} T held (w : world content) set units : tables_ok T -> tables_direct T -> good held w ->
  In set [unescaped_uri_set; unescaped_uri_component_set] -> Forall is_u16 units -> existsb lone (code_points units) = false ->
  fits_32 (9 * zlength (cesu8_encode units)) ->
  exists text, encode_text set (code_points units) = inr text
    /\ runs (ecma_builtin_global_object_decode_uri_helper T text set) w (delivers T held w (inr (cesu8_encode units))).
Proof.
  intros HT HD Hgood Hset Hu Hlone Hfit. exists (concat (map (escape_code_point set) (code_points units))). split; [unfold encode_text; now rewrite Hlone |].
  assert (H37 : is_in 37 set = false) by (destruct Hset as [<- | [<- | []]]; reflexivity).
  pose proof (escapes_ascii set _ (code_points_range units Hu)) as Ha. destruct (ascii_encode _ Ha) as [U Et].
  destruct (decode_complete set _ units (decode_encoded set units Hu H37 Hlone) U) as [_ H]. rewrite Et in H.
  pose proof (encode_spec set units Hu) as He. unfold encode_text in He. rewrite Hlone in He. pose proof (escapes_size _ _ _ He) as Hsize.
  apply (routine_spec T HT HD held w _ _ _ H); [now exists units | exact Hgood | unfold fits_32 in *; lia].
Qed.

(** C30: escape and unescape on every string, the empty one included: escape leaves the
    characters of its set alone and writes the others as %XX or %uXXXX; unescape
    reads the escapes and leaves everything else; run on what escape delivers,
    unescape delivers the original string, lone surrogates included. *)
Theorem escape_unescape_correct {BH : BlockHeap} T held (w : world content) units : tables_ok T -> tables_direct T -> good held w ->
  Forall is_u16 units -> fits_32 (3 * zlength (cesu8_encode units)) ->
  runs (ecma_builtin_global_object_escape T (cesu8_encode units)) w (delivers T held w (inr (concat (map escape_unit units))))
  /\ runs (ecma_builtin_global_object_unescape T (cesu8_encode units)) w (delivers T held w (inr (cesu8_encode (unescape_units (length units) units))))
  /\ (fits_32 (9 * zlength (cesu8_encode units)) ->
      runs (ecma_builtin_global_object_unescape T (concat (map escape_unit units))) w (delivers T held w (inr (cesu8_encode units))))
  /\ forall c, 0 <= c < 128 -> is_in c ecma_escape_set = is_alphanumeric c || existsb (Z.eqb c) escape_mark.
Proof.
  intros HT HD Hgood Hu Hfit. destruct (escape_spec units Hu) as [He Ha]. splits.
  - apply (routine_spec T HT HD held w _ _ _ He); [now apply text_ascii | exact Hgood | exact Hfit].
  - exact (unescape_delivers T held w units HT HD Hgood Hu Hfit).
  - intros Hfit9. pose proof (escapes_size _ _ _ He) as Hsize. destruct (ascii_encode _ Ha) as [U Et]. set (escaped := concat (map escape_unit units)) in *.
    rewrite <- (unescape_escaped units Hu (length escaped) (Nat.le_refl _)) at 1. fold escaped. rewrite <- Et at 1.
    apply (unescape_delivers T held w escaped HT HD Hgood U). rewrite Et. unfold fits_32 in *. lia.
  - intros c Hc. exact (proj2 (proj2 (sets_hold c Hc))).
Qed.

(** "a/" and U+1F600 *)
Definition example_units : list Z := [97; 47; 55357; 56832].

Lemma example_units_u16 : Forall is_u16 example_units.
Proof. unfold example_units. repeat (apply Forall_cons; split; [unfold is_u16; lia |]). constructor. Qed.

Lemma encode_uri_witness :
  runs (ecma_builtin_global_object_encode_uri_helper default_tables (cesu8_encode example_units) unescaped_uri_component_set) string_world
    (delivers default_tables (take 0 (fun _ => 0)) string_world (inr [97; 37; 50; 70; 37; 70; 48; 37; 57; 70; 37; 57; 56; 37; 56; 48]))
  /\ runs (ecma_builtin_global_object_encode_uri_helper default_tables (cesu8_encode [55357]) unescaped_uri_set) string_world
    (delivers default_tables (take 0 (fun _ => 0)) string_world (inl ECMA_ERR_UNICODE_SURROGATE_PAIR_MISSING)).
Proof.
  split.
  - exact (proj1 (encode_uri_correct default_tables (take 0 (fun _ => 0)) string_world unescaped_uri_component_set example_units default_tables_ok default_direct string_world_good
      example_units_u16 ltac:(now vm_compute))).
  - refine (proj1 (encode_uri_correct default_tables (take 0 (fun _ => 0)) string_world unescaped_uri_set [55357] default_tables_ok default_direct string_world_good _ _)); [| now vm_compute].
    constructor; [unfold is_u16; lia | constructor].
Defined.

(** "%41%2f" keeps the escape of the slash in decodeURI; "%4" does not decode *)
Definition example_escapes : list Z := [37; 52; 49; 37; 50; 102].

Lemma example_escapes_decode : decodes unescaped_uri_set example_escapes [65; 37; 50; 102].
Proof.
  assert (D : forall h l, lit_char_is_hex_digit h = true -> lit_char_is_hex_digit l = true -> is_u8 h -> is_u8 l -> escaped (hex_value h * 16 + hex_value l) [37; h; l]).
  { intros h l Hh Hl Uh Ul. exists h, l. splits; (reflexivity || now split). }
  apply (decodes_ascii _ _ 65 [37; 52; 49]); [apply (D 52 49); (reflexivity || (unfold is_u8; lia)) | lia | reflexivity |].
  apply (decodes_kept _ _ 47); [apply (D 50 102); (reflexivity || (unfold is_u8; lia)) | lia | reflexivity | constructor].
Qed.

Lemma decode_uri_witness :
  runs (ecma_builtin_global_object_decode_uri_helper default_tables (cesu8_encode example_escapes) unescaped_uri_set) string_world
    (delivers default_tables (take 0 (fun _ => 0)) string_world (inr [65; 37; 50; 102]))
  /\ match ecma_builtin_global_object_decode_uri_helper default_tables [37; 52] unescaped_uri_set string_world with
     | OK (inl e) w' => e = ECMA_ERR_INVALID_HEXADECIMAL_VALUE | _ => False end.
Proof.
  split; [| now vm_compute].
  destruct (decode_uri_correct default_tables (take 0 (fun _ => 0)) string_world unescaped_uri_set example_escapes default_tables_ok default_direct string_world_good) as (r & Hr & _ & Hd & _).
  - unfold example_escapes. repeat (apply Forall_cons; split; [unfold is_u16; lia |]). constructor.
  - now vm_compute.
  - rewrite (Hd _ example_escapes_decode) in Hr. exact Hr.
Defined.

Lemma uri_roundtrip_witness : exists text, encode_text unescaped_uri_component_set (code_points example_units) = inr text
  /\ runs (ecma_builtin_global_object_decode_uri_helper default_tables text unescaped_uri_component_set) string_world
       (delivers default_tables (take 0 (fun _ => 0)) string_world (inr (cesu8_encode example_units))).
Proof.
  apply (uri_roundtrip default_tables (take 0 (fun _ => 0)) string_world unescaped_uri_component_set example_units default_tables_ok default_direct string_world_good);
    [now right; left | exact example_units_u16 | reflexivity | now vm_compute].
Defined.

Lemma escape_unescape_witness :
  runs (ecma_builtin_global_object_escape default_tables (cesu8_encode example_units)) string_world
    (delivers default_tables (take 0 (fun _ => 0)) string_world (inr [97; 47; 37; 117; 68; 56; 51; 68; 37; 117; 68; 69; 48; 48]))
  /\ runs (ecma_builtin_global_object_unescape default_tables [97; 47; 37; 117; 68; 56; 51; 68; 37; 117; 68; 69; 48; 48]) string_world
    (delivers default_tables (take 0 (fun _ => 0)) string_world (inr (cesu8_encode example_units)))
  /\ runs (ecma_builtin_global_object_unescape default_tables []) string_world (delivers default_tables (take 0 (fun _ => 0)) string_world (inr [])).
Proof.
  destruct (escape_unescape_correct default_tables (take 0 (fun _ => 0)) string_world example_units default_tables_ok default_direct string_world_good example_units_u16 ltac:(now vm_compute)) as (H1 & _ & H2 & _).
  destruct (escape_unescape_correct default_tables (take 0 (fun _ => 0)) string_world [] default_tables_ok default_direct string_world_good ltac:(constructor) ltac:(now vm_compute)) as (_ & H3 & _).
  splits; [exact H1 | exact (H2 ltac:(now vm_compute)) | exact H3].
Defined.
