(* ===== verification/PropNames.v ===== *)
(** * Property names and property types: src/jjs-core/ecma/base

    A property is a byte of flags whose two highest bits are the type of its name, and
    a compressed pointer that is the value of a direct string or the pointer of a
    string on the heap (ecma-globals.h; ecma_string_to_property_name and its kin of
    ecma-helpers-string.c; the attributes in ecma-helpers.c). *)
From Stdlib Require Import ZArith Lia Bool List.
From stdpp Require Import base gmap list.
From S2P Require Import Prelude JmemPointers Values.
Import ListNotations.
#[local] Open Scope Z_scope.

(** ** Flags *)

Definition ECMA_PROPERTY_FLAG_CONFIGURABLE : Z := 1.
Definition ECMA_PROPERTY_FLAG_ENUMERABLE : Z := 2.
Definition ECMA_PROPERTY_FLAG_WRITABLE : Z := 4.
Definition ECMA_PROPERTY_FLAG_DELETED : Z := 8.
Definition ECMA_PROPERTY_FLAG_LCACHED : Z := 16.
Definition ECMA_PROPERTY_FLAG_DATA : Z := 32.
Definition ECMA_PROPERTY_CONFIGURABLE_ENUMERABLE : Z := Z.lor ECMA_PROPERTY_FLAG_CONFIGURABLE ECMA_PROPERTY_FLAG_ENUMERABLE.
Definition ECMA_PROPERTY_NAME_TYPE_SHIFT : Z := 6.
Definition ECMA_PROPERTY_TYPE_HASHMAP : Z := Z.shiftl ECMA_DIRECT_STRING_SPECIAL ECMA_PROPERTY_NAME_TYPE_SHIFT.
Definition ECMA_PROPERTY_TYPE_DELETED : Z := Z.lor ECMA_PROPERTY_FLAG_DELETED (Z.shiftl ECMA_DIRECT_STRING_SPECIAL ECMA_PROPERTY_NAME_TYPE_SHIFT).
Definition ECMA_PROPERTY_INTERNAL : Z := Z.lor ECMA_PROPERTY_FLAG_DATA (Z.shiftl ECMA_DIRECT_STRING_SPECIAL ECMA_PROPERTY_NAME_TYPE_SHIFT).

Definition ECMA_PROPERTY_GET_NAME_TYPE (property : Z) : Z := Z.shiftr property ECMA_PROPERTY_NAME_TYPE_SHIFT.
Definition ECMA_PROPERTY_IS_RAW (property : Z) : bool := property <? Z.shiftl ECMA_DIRECT_STRING_SPECIAL ECMA_PROPERTY_NAME_TYPE_SHIFT.
Definition ECMA_PROPERTY_IS_NAMED_PROPERTY (property : Z) : bool := (property <? ECMA_PROPERTY_TYPE_HASHMAP) || (ECMA_PROPERTY_INTERNAL <=? property).

(** After the 473 magic strings of the default configuration *)
Definition LIT_INTERNAL_MAGIC_STRING_DELETED : Z := 493.

Definition flag_set (property flag : Z) : bool := negb (Z.land property flag =? 0).
Definition with_flag (property flag : Z) (value : bool) : Z :=
  if value then u8 (Z.lor property flag) else u8 (Z.land property (Z.lnot flag)).

Definition ecma_is_property_writable (property : Z) : bool := flag_set property ECMA_PROPERTY_FLAG_WRITABLE.
Definition ecma_set_property_writable_attr (property : Z) (is_writable : bool) : Z := with_flag property ECMA_PROPERTY_FLAG_WRITABLE is_writable.
Definition ecma_is_property_enumerable (property : Z) : bool := flag_set property ECMA_PROPERTY_FLAG_ENUMERABLE.
Definition ecma_set_property_enumerable_attr (property : Z) (is_enumerable : bool) : Z := with_flag property ECMA_PROPERTY_FLAG_ENUMERABLE is_enumerable.
Definition ecma_is_property_configurable (property : Z) : bool := flag_set property ECMA_PROPERTY_FLAG_CONFIGURABLE.
Definition ecma_set_property_configurable_attr (property : Z) (is_configurable : bool) : Z := with_flag property ECMA_PROPERTY_FLAG_CONFIGURABLE is_configurable.
Definition ecma_is_property_lcached (property : Z) : bool := flag_set property ECMA_PROPERTY_FLAG_LCACHED.
Definition ecma_set_property_lcached (property : Z) (is_lcached : bool) : Z := with_flag property ECMA_PROPERTY_FLAG_LCACHED is_lcached.

(** ** Names *)

Definition ECMA_STRING_TYPE_CONVERSION_SHIFT : Z := ECMA_PROPERTY_NAME_TYPE_SHIFT - ECMA_VALUE_SHIFT.
Definition ECMA_DIRECT_STRING_TYPE_TO_PROP_NAME_TYPE (string_p : Z) : Z :=
  Z.shiftl (Z.land string_p (Z.shiftl 3 ECMA_VALUE_SHIFT)) ECMA_STRING_TYPE_CONVERSION_SHIFT.

(** The name and its type; a string on the heap gets a reference besides *)
Definition ecma_string_to_property_name (prop_name_p : Z) : Z * Z :=
  if ECMA_IS_DIRECT_STRING prop_name_p
  then (u32 (ECMA_GET_DIRECT_STRING_VALUE prop_name_p), u8 (ECMA_DIRECT_STRING_TYPE_TO_PROP_NAME_TYPE prop_name_p))
  else (jmem_compress_pointer 32 prop_name_p, Z.shiftl ECMA_DIRECT_STRING_PTR ECMA_PROPERTY_NAME_TYPE_SHIFT).

Definition ecma_property_to_string (property prop_name_cp : Z) : Z :=
  let property_string := Z.land property (Z.shiftl 3 ECMA_PROPERTY_NAME_TYPE_SHIFT) in
  let property_string := Z.lor (Z.shiftr property_string ECMA_STRING_TYPE_CONVERSION_SHIFT) ECMA_TYPE_DIRECT_STRING in
  Z.lor property_string (u64 (Z.shiftl prop_name_cp ECMA_DIRECT_STRING_SHIFT)).

(** A string on the heap gets a reference besides *)
Definition ecma_string_from_property_name (property prop_name_cp : Z) : Z :=
  if negb (ECMA_PROPERTY_GET_NAME_TYPE property =? ECMA_DIRECT_STRING_PTR) then ecma_property_to_string property prop_name_cp
  else jmem_decompress_pointer prop_name_cp.

(** ** The strings behind names

    What the property lists rely on: [key_of] is what a name stands for, [hash_field] the
    hash stored in a string on the heap, and [names_equal] the comparison of two of them;
    a name that is direct is the only one of its key. *)
Class PropertyNames := {
  name_key : Type;
  name_key_dec :: EqDecision name_key;
  key_of : Z -> option name_key;
  hash_field : Z -> Z;
  names_equal : Z -> Z -> bool;
  direct_names : forall p k, key_of p = Some k -> ECMA_IS_DIRECT_STRING p = true ->
    exists type value, p = ECMA_CREATE_DIRECT_STRING type value /\ 1 <= type <= 3 /\ 0 <= value < B32
      /\ (type = ECMA_DIRECT_STRING_SPECIAL -> value <> LIT_INTERNAL_MAGIC_STRING_DELETED);
  heap_names : forall p k, key_of p = Some k -> ECMA_IS_DIRECT_STRING p = false -> is_block p /\ p + 16 < B32 /\ is_u32 (hash_field p);
  direct_unique : forall p q k, key_of p = Some k -> key_of q = Some k -> ECMA_IS_DIRECT_STRING p = true -> q = p;
  compare_keys : forall p q k l, key_of p = Some k -> key_of q = Some l -> ECMA_IS_DIRECT_STRING p = false -> ECMA_IS_DIRECT_STRING q = false ->
    names_equal p q = bool_decide (k = l);
  same_hash : forall p q k, key_of p = Some k -> key_of q = Some k -> ECMA_IS_DIRECT_STRING p = false -> ECMA_IS_DIRECT_STRING q = false -> hash_field q = hash_field p
}.

Section Names.
Context {PN : PropertyNames}.

Definition ecma_string_hash (string_p : Z) : Z :=
  if ECMA_IS_DIRECT_STRING string_p then u32 (ECMA_GET_DIRECT_STRING_VALUE string_p) else hash_field string_p.

Definition ecma_string_get_property_name_hash (property prop_name_cp : Z) : Z :=
  if ECMA_PROPERTY_GET_NAME_TYPE property =? ECMA_DIRECT_STRING_PTR then hash_field (jmem_decompress_pointer prop_name_cp) else u32 prop_name_cp.

Definition ecma_string_compare_to_property_name (property prop_name_cp string_p : Z) : bool :=
  if negb (ECMA_PROPERTY_GET_NAME_TYPE property =? ECMA_DIRECT_STRING_PTR) then ecma_property_to_string property prop_name_cp =? string_p
  else if ECMA_IS_DIRECT_STRING string_p then false
  else names_equal (jmem_decompress_pointer prop_name_cp) string_p.

(** The name a property has: the flags do not matter *)
Definition named (property prop_name_cp : Z) : option name_key :=
  if property =? ECMA_PROPERTY_TYPE_DELETED then None else key_of (ecma_string_from_property_name property prop_name_cp).

(** ** Lemmas *)

Definition is_name (p : Z) : Prop := exists k, key_of p = Some k.

(** The type and the value of a name *)
Definition name_type (p : Z) : Z := if ECMA_IS_DIRECT_STRING p then ECMA_GET_DIRECT_STRING_TYPE p else ECMA_DIRECT_STRING_PTR.
Definition name_value (p : Z) : Z := if ECMA_IS_DIRECT_STRING p then u32 (ECMA_GET_DIRECT_STRING_VALUE p) else jmem_compress_pointer 32 p.

Lemma land_shifted x m s : 0 <= s -> Z.land x (Z.shiftl m s) = Z.shiftl (Z.land (Z.shiftr x s) m) s.
Proof.
  intros Hs. apply Z.bits_inj'. intros n Hn. rewrite Z.land_spec, !Z.shiftl_spec, Z.land_spec by lia. destruct (Z.lt_ge_cases n s).
  - rewrite !(Z.testbit_neg_r _ (n - s)) by lia. now rewrite andb_false_r.
  - rewrite Z.shiftr_spec by lia. now replace (n - s + s) with n by lia.
Qed.

Lemma name_view p : is_name p -> 0 <= name_type p <= 3 /\ ecma_string_to_property_name p = (name_value p, 64 * name_type p) /\ 0 <= name_value p < B32
  /\ (if ECMA_IS_DIRECT_STRING p then 1 <= name_type p /\ p = ECMA_CREATE_DIRECT_STRING (name_type p) (name_value p)
        /\ ECMA_GET_DIRECT_STRING_VALUE p = name_value p /\ (name_type p = ECMA_DIRECT_STRING_SPECIAL -> name_value p <> LIT_INTERNAL_MAGIC_STRING_DELETED)
      else name_type p = 0 /\ jmem_decompress_pointer (name_value p) = p).
Proof.
  intros [k Hk]. unfold ecma_string_to_property_name, name_type, name_value. destruct (ECMA_IS_DIRECT_STRING p) eqn:E.
  - destruct (direct_names p k Hk E) as (type & value & -> & Ht & Hv & Hdel). destruct (direct_string_fields type value ltac:(lia) ltac:(lia)) as (_ & E1 & E2 & _ & _).
    assert (E3 : ECMA_DIRECT_STRING_TYPE_TO_PROP_NAME_TYPE (ECMA_CREATE_DIRECT_STRING type value) = 64 * type).
    { unfold ECMA_DIRECT_STRING_TYPE_TO_PROP_NAME_TYPE, ECMA_STRING_TYPE_CONVERSION_SHIFT, ECMA_PROPERTY_NAME_TYPE_SHIFT. unfold ECMA_GET_DIRECT_STRING_TYPE in E1.
      rewrite land_shifted, E1 by (unfold ECMA_VALUE_SHIFT; lia). unfold ECMA_VALUE_SHIFT. rewrite !Z.shiftl_mul_pow2 by lia. change (2 ^ 3) with 8. change (2 ^ (6 - 3)) with 8. lia. }
    rewrite E1, E2, E3. rewrite u32_small by (unfold is_u32; lia). unfold u8. rewrite Z.mod_small by lia. unfold ECMA_DIRECT_STRING_PTR. splits; try lia; try reflexivity; exact Hdel.
  - destruct (heap_names p k Hk E) as ([Hr [q ->]] & Hend & _). replace (q * 8) with (8 * q) in * by lia. rewrite compress_block by (auto; lia).
    unfold ECMA_DIRECT_STRING_PTR. splits; try lia; try reflexivity. apply decompress_block. lia.
Qed.

(** Below the type of the name are six flags *)
Definition with_name (flags p : Z) : Z := Z.lor flags (snd (ecma_string_to_property_name p)).

Lemma with_name_sum flags p : is_name p -> 0 <= flags < 64 -> with_name flags p = flags + 64 * name_type p.
Proof.
  intros Hp Hf. destruct (name_view p Hp) as (Ht & E & _). unfold with_name. rewrite E. cbn [snd]. rewrite Z.lor_comm, Z.mul_comm. change 64 with (2 ^ 6). rewrite lor_mul_low by (cbn; lia). lia.
Qed.

Lemma name_type_of flags p : is_name p -> 0 <= flags < 64 -> ECMA_PROPERTY_GET_NAME_TYPE (flags + 64 * name_type p) = name_type p.
Proof. intros _ Hf. unfold ECMA_PROPERTY_GET_NAME_TYPE, ECMA_PROPERTY_NAME_TYPE_SHIFT. rewrite Z.shiftr_div_pow2 by lia. change (2 ^ 6) with 64. Z.div_mod_to_equations; lia. Qed.

(** A property knows its name *)
Lemma from_to_name flags p : is_name p -> 0 <= flags < 64 -> ecma_string_from_property_name (flags + 64 * name_type p) (name_value p) = p.
Proof.
  intros Hp Hf. destruct (name_view p Hp) as (Ht & _ & Hv & Hd). unfold ecma_string_from_property_name. rewrite name_type_of by assumption. unfold ECMA_DIRECT_STRING_PTR.
  destruct (ECMA_IS_DIRECT_STRING p).
  - destruct Hd as (H1 & Ep & _). rewrite (proj2 (Z.eqb_neq _ _)) by lia. cbn [negb]. rewrite Ep at 3. rewrite direct_string_word by lia. unfold ecma_property_to_string.
    unfold ECMA_PROPERTY_NAME_TYPE_SHIFT, ECMA_STRING_TYPE_CONVERSION_SHIFT, ECMA_PROPERTY_NAME_TYPE_SHIFT, ECMA_VALUE_SHIFT, ECMA_TYPE_DIRECT_STRING, ECMA_DIRECT_STRING_SHIFT, ECMA_VALUE_SHIFT.
    rewrite land_shifted by lia. rewrite (Z.shiftr_div_pow2 (flags + _)) by lia. change (2 ^ 6) with 64. replace ((flags + 64 * name_type p) / 64) with (name_type p) by (Z.div_mod_to_equations; lia).
    rewrite (land_ones' _ 2 3) by (reflexivity || lia). rewrite (Z.mod_small (name_type p)) by (change (2 ^ 2) with 4; lia).
    rewrite Z.shiftr_shiftl_l by lia. change (6 - (6 - 3)) with 3. rewrite lor_shiftl_low by (cbn; lia). rewrite Z.shiftl_mul_pow2 by lia. change (2 ^ (3 + 2)) with (2 ^ 5). unfold u64. rewrite Z.mod_small by (cbn; lia).
    rewrite Z.lor_comm, lor_mul_low by (cbn; lia). cbn. lia.
  - destruct Hd as (-> & Ep). cbn [Z.eqb negb]. exact Ep.
Qed.

Lemma named_with_name flags p k : key_of p = Some k -> 0 <= flags < 64 -> (name_type p = ECMA_DIRECT_STRING_SPECIAL -> flags <> ECMA_PROPERTY_FLAG_DELETED) ->
  named (flags + 64 * name_type p) (name_value p) = Some k.
Proof.
  intros Hk Hf Hdel. assert (Hp : is_name p) by now exists k. unfold named. rewrite from_to_name by assumption. destruct (name_view p Hp) as (Ht & _).
  unfold ECMA_PROPERTY_TYPE_DELETED. change (Z.lor ECMA_PROPERTY_FLAG_DELETED (Z.shiftl ECMA_DIRECT_STRING_SPECIAL ECMA_PROPERTY_NAME_TYPE_SHIFT)) with 200.
  destruct (Z.eqb_spec (flags + 64 * name_type p) 200); [| exact Hk]. unfold ECMA_DIRECT_STRING_SPECIAL, ECMA_PROPERTY_FLAG_DELETED in Hdel. lia.
Qed.

Lemma name_hash flags p : is_name p -> 0 <= flags < 64 -> ecma_string_get_property_name_hash (flags + 64 * name_type p) (name_value p) = ecma_string_hash p.
Proof.
  intros Hp Hf. unfold ecma_string_get_property_name_hash. rewrite name_type_of by assumption. destruct (name_view p Hp) as (Ht & _ & Hv & Hd). unfold ecma_string_hash, ECMA_DIRECT_STRING_PTR.
  destruct (ECMA_IS_DIRECT_STRING p).
  - destruct Hd as (H1 & _ & -> & _). now rewrite (proj2 (Z.eqb_neq _ _)) by lia.
  - destruct Hd as (-> & ->). reflexivity.
Qed.

Lemma hash_u32 p : is_name p -> is_u32 (ecma_string_hash p).
Proof.
  intros [k Hk]. unfold ecma_string_hash. destruct (ECMA_IS_DIRECT_STRING p) eqn:E; [unfold is_u32, u32; apply Z.mod_pos_bound; lia |]. apply (heap_names p k Hk E).
Qed.

(** The hash and the equality of names are those of their keys *)
Lemma hash_key p q k : key_of p = Some k -> key_of q = Some k -> ecma_string_hash q = ecma_string_hash p.
Proof.
  intros Hp Hq. unfold ecma_string_hash. destruct (ECMA_IS_DIRECT_STRING p) eqn:Ep.
  - rewrite (direct_unique p q k Hp Hq Ep), Ep. reflexivity.
  - destruct (ECMA_IS_DIRECT_STRING q) eqn:Eq; [rewrite (direct_unique q p k Hq Hp Eq) in Ep; congruence |]. exact (same_hash p q k Hp Hq Ep Eq).
Qed.

Lemma compare_name flags p q k l : key_of p = Some k -> key_of q = Some l -> 0 <= flags < 64 ->
  ecma_string_compare_to_property_name (flags + 64 * name_type p) (name_value p) q = bool_decide (k = l).
Proof.
  intros Hp Hq Hf. assert (Np : is_name p) by now exists k. unfold ecma_string_compare_to_property_name. rewrite name_type_of by assumption.
  pose proof (from_to_name flags p Np Hf) as Ef. unfold ecma_string_from_property_name in Ef. rewrite name_type_of in Ef by assumption.
  destruct (name_view p Np) as (Ht & _ & Hv & Hd). destruct (ECMA_IS_DIRECT_STRING p) eqn:Ep.
  - destruct Hd as (H1 & _). rewrite (proj2 (Z.eqb_neq _ _)) in * by (unfold ECMA_DIRECT_STRING_PTR; lia). cbn [negb] in *. rewrite Ef. destruct (Z.eqb_spec p q) as [-> | Hne].
    + rewrite bool_decide_eq_true_2; [reflexivity | congruence].
    + rewrite bool_decide_eq_false_2; [reflexivity |]. intros ->. apply Hne. symmetry. exact (direct_unique p q l Hp Hq Ep).
  - destruct Hd as (E0 & Ed). rewrite E0 in *. cbn [Z.eqb ECMA_DIRECT_STRING_PTR negb] in *. rewrite Ed. destruct (ECMA_IS_DIRECT_STRING q) eqn:Eq.
    + rewrite bool_decide_eq_false_2; [reflexivity |]. intros ->. rewrite (direct_unique q p l Hq Hp Eq) in Ep. congruence.
    + exact (compare_keys p q k l Hp Hq Ep Eq).
Qed.
End Names.
