(* ===== verification/PropHashmap.v ===== *)
(** * The table of a property hash map: src/jjs-core/ecma/base/ecma-property-hashmap.c

    A hash map has a power of two of entries, each a compressed pointer to a property
    pair and a bit that selects one of the two properties; a null pointer is an empty
    entry, or a deleted one when its bit is set.  The places of a name are visited with
    a step that depends on its hash.  This file has the loops over the table and the
    theory of probing; Properties.v has the functions around them. *)
From Stdlib Require Import ZArith Znumtheory Lia Bool List.
From stdpp Require Import base gmap list.
From S2P Require Import Prelude JmemPointers.
Import ListNotations.
#[local] Open Scope Z_scope.

Definition ECMA_NULL_POINTER : Z := JMEM_CP_NULL.
Definition ECMA_PROPERTY_HASMAP_MINIMUM_SIZE : Z := 32.
Definition ECMA_PROPERTY_HASHMAP_NUMBER_OF_STEPS : Z := 8.
Definition ecma_property_hashmap_steps : list Z := [3; 5; 7; 11; 13; 17; 19; 23].

Record ecma_property_hashmap_t := mk_hashmap {
  next_of_map : Z; (** header.next_property_cp *)
  max_property_count : Z;
  null_count : Z;
  unused_count : Z;
  pair_list : list Z;
  bits : list Z
}.

Definition sizeof_ecma_property_hashmap_t : Z := 20.
Definition ECMA_PROPERTY_HASHMAP_GET_TOTAL_SIZE (max_property_count : Z) : Z :=
  sizeof_ecma_property_hashmap_t + max_property_count * 4 + Z.shiftr max_property_count 3.

Definition byte_of (bytes : list Z) (index : Z) : Z := nth (Z.to_nat (Z.shiftr index 3)) bytes 0.
Definition ECMA_PROPERTY_HASHMAP_GET_BIT (bytes : list Z) (index : Z) : bool :=
  negb (Z.land (byte_of bytes index) (Z.shiftl 1 (Z.land index 7)) =? 0).
Definition ECMA_PROPERTY_HASHMAP_CLEAR_BIT (bytes : list Z) (index : Z) : list Z :=
  <[Z.to_nat (Z.shiftr index 3) := u8 (Z.land (byte_of bytes index) (Z.lnot (Z.shiftl 1 (Z.land index 7))))]> bytes.
Definition ECMA_PROPERTY_HASHMAP_SET_BIT (bytes : list Z) (index : Z) : list Z :=
  <[Z.to_nat (Z.shiftr index 3) := u8 (Z.lor (byte_of bytes index) (Z.shiftl 1 (Z.land index 7)))]> bytes.

Definition step_of (hash : Z) : Z :=
  nth (Z.to_nat (Z.land hash (ECMA_PROPERTY_HASHMAP_NUMBER_OF_STEPS - 1))) ecma_property_hashmap_steps 0.

(** [None] outside of the table *)
Definition entry_at (h : ecma_property_hashmap_t) (entry_index : Z) : option Z := pair_list h !! Z.to_nat entry_index.

(** At least 1/3 items must be NULL *)
Fixpoint table_size (fuel : nat) (max_property_count named_property_count : Z) : option Z :=
  if max_property_count <? u32 (named_property_count + Z.shiftr named_property_count 1) then
    match fuel with
    | O => None
    | S fuel => table_size fuel (u32 (Z.shiftl max_property_count 1)) named_property_count
    end
  else Some max_property_count.

Definition empty_table (next_property_cp max_property_count named_property_count : Z) : ecma_property_hashmap_t :=
  mk_hashmap next_property_cp max_property_count (u32 (max_property_count - named_property_count)) (u32 (max_property_count - named_property_count))
    (repeat 0 (Z.to_nat max_property_count)) (repeat 0 (Z.to_nat (Z.shiftr max_property_count 3))).

(** The first entry without a pointer.  There is one, so that the loop visits no entry
    twice. *)
Fixpoint find_null (fuel : nat) (h : ecma_property_hashmap_t) (entry_index step mask : Z) : option Z :=
  match entry_at h entry_index with
  | None => None
  | Some pair_cp =>
      if pair_cp =? ECMA_NULL_POINTER then Some entry_index
      else
        match fuel with
        | O => None
        | S fuel => find_null fuel h (Z.land (u32 (entry_index + step)) mask) step mask
        end
  end.

Definition table_fuel (h : ecma_property_hashmap_t) : nat := length (pair_list h).

Definition with_entry (h : ecma_property_hashmap_t) (entry_index pair_cp : Z) : ecma_property_hashmap_t :=
  mk_hashmap (next_of_map h) (max_property_count h) (null_count h) (unused_count h) (<[Z.to_nat entry_index := pair_cp]> (pair_list h)) (bits h).
Definition with_bits (h : ecma_property_hashmap_t) (b : list Z) : ecma_property_hashmap_t :=
  mk_hashmap (next_of_map h) (max_property_count h) (null_count h) (unused_count h) (pair_list h) b.
Definition with_counts (h : ecma_property_hashmap_t) (nulls unused : Z) : ecma_property_hashmap_t :=
  mk_hashmap (next_of_map h) (max_property_count h) nulls unused (pair_list h) (bits h).

(** One property in ecma_property_hashmap_create *)
Definition place_entry (h : ecma_property_hashmap_t) (hash pair_cp : Z) (second : bool) : option ecma_property_hashmap_t :=
  let mask := u32 (max_property_count h - 1) in
  match find_null (table_fuel h) h (Z.land hash mask) (step_of hash) mask with
  | None => None
  | Some entry_index =>
      let h := with_entry h entry_index pair_cp in
      Some (if second then with_bits h (ECMA_PROPERTY_HASHMAP_SET_BIT (bits h) entry_index) else h)
  end.

(** ecma_property_hashmap_insert, when the table is not replaced *)
Definition insert_entry (h : ecma_property_hashmap_t) (hash pair_cp : Z) (second : bool) : option ecma_property_hashmap_t :=
  let mask := u32 (max_property_count h - 1) in
  match find_null (table_fuel h) h (Z.land hash mask) (step_of hash) mask with
  | None => None
  | Some entry_index =>
      let h := with_entry h entry_index pair_cp in
      let nulls := if negb (ECMA_PROPERTY_HASHMAP_GET_BIT (bits h) entry_index) then u32 (null_count h - 1) else null_count h in
      let h := with_counts h nulls (u32 (unused_count h - 1)) in
      Some (with_bits h (if second then ECMA_PROPERTY_HASHMAP_SET_BIT (bits h) entry_index else ECMA_PROPERTY_HASHMAP_CLEAR_BIT (bits h) entry_index))
  end.

(** The loop of ecma_property_hashmap_delete: the entry of the property *)
Fixpoint find_property (fuel : nat) (h : ecma_property_hashmap_t) (entry_index step mask pair_cp : Z) (second : bool) : option Z :=
  match entry_at h entry_index with
  | None => None
  | Some cp =>
      if negb (cp =? ECMA_NULL_POINTER) && (cp =? pair_cp) && Bool.eqb (ECMA_PROPERTY_HASHMAP_GET_BIT (bits h) entry_index) second then Some entry_index
      else
        match fuel with
        | O => None
        | S fuel => find_property fuel h (Z.land (u32 (entry_index + step)) mask) step mask pair_cp second
        end
  end.

Inductive ecma_property_hashmap_delete_status :=
| ECMA_PROPERTY_HASHMAP_DELETE_NO_HASHMAP
| ECMA_PROPERTY_HASHMAP_DELETE_HAS_HASHMAP
| ECMA_PROPERTY_HASHMAP_DELETE_RECREATE_HASHMAP.

Definition delete_entry (h : ecma_property_hashmap_t) (hash pair_cp : Z) (second : bool) : option (ecma_property_hashmap_t * ecma_property_hashmap_delete_status) :=
  let h := with_counts h (null_count h) (u32 (unused_count h + 1)) in
  if Z.shiftr (u32 (max_property_count h * 3)) 2 <? unused_count h then Some (h, ECMA_PROPERTY_HASHMAP_DELETE_RECREATE_HASHMAP)
  else
    let mask := u32 (max_property_count h - 1) in
    match find_property (table_fuel h) h (Z.land hash mask) (step_of hash) mask pair_cp second with
    | None => None
    | Some entry_index =>
        let h := with_entry h entry_index ECMA_NULL_POINTER in
        Some (with_bits h (ECMA_PROPERTY_HASHMAP_SET_BIT (bits h) entry_index), ECMA_PROPERTY_HASHMAP_DELETE_HAS_HASHMAP)
    end.

(** The loops of ecma_property_hashmap_find, by the test of a property; the result is
    the property, or [None] for NULL *)
Fixpoint find_loop (matches : Z -> bool -> option bool) (fuel : nat) (h : ecma_property_hashmap_t) (entry_index step mask : Z) : option (option (Z * bool)) :=
  match entry_at h entry_index with
  | None => None
  | Some cp =>
      let continue :=
        match fuel with
        | O => None
        | S fuel => find_loop matches fuel h (Z.land (u32 (entry_index + step)) mask) step mask
        end in
      if negb (cp =? ECMA_NULL_POINTER) then
        let second := ECMA_PROPERTY_HASHMAP_GET_BIT (bits h) entry_index in
        match matches cp second with
        | None => None
        | Some true => Some (Some (cp, second))
        | Some false => continue
        end
      else if negb (ECMA_PROPERTY_HASHMAP_GET_BIT (bits h) entry_index) then Some None
      else continue
  end.

Definition find_entry (matches : Z -> bool -> option bool) (h : ecma_property_hashmap_t) (hash : Z) : option (option (Z * bool)) :=
  let mask := u32 (max_property_count h - 1) in
  find_loop matches (table_fuel h) h (Z.land hash mask) (step_of hash) mask.
