(* ===== verification/PropProbing.v ===== *)
(** * Probing in a property hash map

    The places that a name is looked for in the table of PropHashmap.v are all places of
    the table; what the loops find; and the invariant of a table that holds a set of
    properties, with the table after an insertion and a deletion. *)
From Stdlib Require Import ZArith Znumtheory Lia Bool List.
From stdpp Require Import base gmap list.
From S2P Require Import Prelude JmemPointers PropHashmap.
Import ListNotations.
#[local] Open Scope Z_scope.

(** ** Bits *)

Lemma land_pow2_test b k : 0 <= k -> negb (Z.land b (Z.shiftl 1 k) =? 0) = Z.testbit b k.
Proof.
  intros Hk. rewrite Z.shiftl_1_l. destruct (Z.testbit b k) eqn:E.
  - apply negb_true_iff, Z.eqb_neq. intros H. assert (Hb : Z.testbit (Z.land b (2 ^ k)) k = true) by (rewrite Z.land_spec, E, Z.pow2_bits_true by lia; reflexivity).
    rewrite H, Z.bits_0 in Hb. discriminate.
  - apply negb_false_iff, Z.eqb_eq. apply Z.bits_inj'. intros n Hn. rewrite Z.land_spec, Z.bits_0. destruct (Z.eq_dec n k) as [-> | Hne]; [now rewrite E |].
    rewrite Z.pow2_bits_false by lia. apply andb_false_r.
Qed.

Definition bit_at (bytes : list Z) (index : Z) : bool := ECMA_PROPERTY_HASHMAP_GET_BIT bytes index.

Lemma bit_at_test bytes i : 0 <= i -> bit_at bytes i = Z.testbit (byte_of bytes i) (i mod 8).
Proof.
  intros Hi. unfold bit_at, ECMA_PROPERTY_HASHMAP_GET_BIT. rewrite (land_ones' i 3 7) by (reflexivity || lia). change (2 ^ 3) with 8.
  apply land_pow2_test. apply Z.mod_pos_bound. lia.
Qed.

Lemma byte_index i : 0 <= i -> Z.shiftr i 3 = i / 8.
Proof. intros Hi. now rewrite Z.shiftr_div_pow2 by lia. Qed.

Lemma byte_update bytes i j v : 0 <= i < 8 * zlength bytes -> 0 <= j ->
  byte_of (<[Z.to_nat (Z.shiftr i 3) := v]> bytes) j = if i / 8 =? j / 8 then v else byte_of bytes j.
Proof.
  intros Hi Hj. unfold byte_of. rewrite !byte_index by lia. unfold zlength in Hi. destruct (Z.eqb_spec (i / 8) (j / 8)) as [E | Hne].
  - rewrite E. rewrite nth_lookup, list_lookup_insert_eq; [reflexivity |]. Z.div_mod_to_equations; lia.
  - rewrite !nth_lookup, list_lookup_insert_ne; [reflexivity |]. intros E. apply Hne. apply Z2Nat.inj in E; (assumption || (Z.div_mod_to_equations; lia)).
Qed.

Lemma same_bit i j : 0 <= i -> 0 <= j -> i <> j -> i / 8 = j / 8 -> i mod 8 <> j mod 8.
Proof. intros Hi Hj Hne E. Z.div_mod_to_equations; lia. Qed.

Lemma u8_testbit x k : 0 <= k < 8 -> Z.testbit (u8 x) k = Z.testbit x k.
Proof. intros Hk. unfold u8. change 256 with (2 ^ 8). now rewrite Z.mod_pow2_bits_low by lia. Qed.

Lemma bit_set bytes i j : 0 <= i < 8 * zlength bytes -> 0 <= j -> bit_at (ECMA_PROPERTY_HASHMAP_SET_BIT bytes i) j = (i =? j) || bit_at bytes j.
Proof.
  intros Hi Hj. rewrite !bit_at_test by lia. unfold ECMA_PROPERTY_HASHMAP_SET_BIT. rewrite byte_update by lia.
  assert (Hm : 0 <= j mod 8 < 8) by (apply Z.mod_pos_bound; lia). rewrite (land_ones' i 3 7) by (reflexivity || lia). change (2 ^ 3) with 8.
  assert (Hmi : 0 <= i mod 8 < 8) by (apply Z.mod_pos_bound; lia).
  destruct (Z.eqb_spec (i / 8) (j / 8)) as [E | Hne]; [| destruct (Z.eqb_spec i j); [now subst | reflexivity]].
  rewrite u8_testbit, Z.lor_spec, Z.shiftl_1_l by lia. assert (Eb : byte_of bytes i = byte_of bytes j) by (unfold byte_of; now rewrite !byte_index, E by lia). rewrite Eb.
  destruct (Z.eqb_spec i j) as [-> | Hne]; cbn [orb]; [rewrite Z.pow2_bits_true by lia; apply orb_true_r |].
  rewrite Z.pow2_bits_false by (now apply same_bit). apply orb_false_r.
Qed.

Lemma bit_clear bytes i j : 0 <= i < 8 * zlength bytes -> 0 <= j -> bit_at (ECMA_PROPERTY_HASHMAP_CLEAR_BIT bytes i) j = negb (i =? j) && bit_at bytes j.
Proof.
  intros Hi Hj. rewrite !bit_at_test by lia. unfold ECMA_PROPERTY_HASHMAP_CLEAR_BIT. rewrite byte_update by lia.
  assert (Hm : 0 <= j mod 8 < 8) by (apply Z.mod_pos_bound; lia). rewrite (land_ones' i 3 7) by (reflexivity || lia). change (2 ^ 3) with 8.
  assert (Hmi : 0 <= i mod 8 < 8) by (apply Z.mod_pos_bound; lia).
  destruct (Z.eqb_spec (i / 8) (j / 8)) as [E | Hne]; [| destruct (Z.eqb_spec i j); [now subst | reflexivity]].
  rewrite u8_testbit, Z.land_spec, Z.lnot_spec, Z.shiftl_1_l by lia. assert (Eb : byte_of bytes i = byte_of bytes j) by (unfold byte_of; now rewrite !byte_index, E by lia). rewrite Eb.
  destruct (Z.eqb_spec i j) as [-> | Hne]; cbn [negb andb]; [rewrite Z.pow2_bits_true by lia; apply andb_false_r |].
  rewrite Z.pow2_bits_false by (now apply same_bit). apply andb_true_r.
Qed.

(** ** Places *)

Definition probe (n hash k : Z) : Z := (hash + k * step_of hash) mod 2 ^ n.

Lemma step_odd hash : 0 <= hash -> Z.odd (step_of hash) = true /\ 3 <= step_of hash <= 23.
Proof.
  intros Hh. unfold step_of, ECMA_PROPERTY_HASHMAP_NUMBER_OF_STEPS. change (8 - 1) with 7. rewrite (land_ones' hash 3 7) by (reflexivity || lia). change (2 ^ 3) with 8.
  assert (Hm : 0 <= hash mod 8 < 8) by (apply Z.mod_pos_bound; lia). set (r := hash mod 8) in *.
  assert (H : forallb (fun k => let s := nth k ecma_property_hashmap_steps 0 in Z.odd s && (3 <=? s) && (s <=? 23)) (seq 0 8) = true) by reflexivity.
  rewrite forallb_forall in H. specialize (H (Z.to_nat r) ltac:(apply in_seq; lia)). cbv zeta in H. apply andb_prop in H as [H H3]. apply andb_prop in H as [H1 H2].
  apply Z.leb_le in H2, H3. now splits.
Qed.

Lemma probe_range n hash k : 0 <= n -> 0 <= probe n hash k < 2 ^ n.
Proof. intros Hn. apply Z.mod_pos_bound. now apply Z.pow_pos_nonneg. Qed.

Lemma odd_coprime s n : Z.odd s = true -> 0 <= n -> rel_prime (2 ^ n) s.
Proof.
  intros Hs Hn. apply rel_prime_sym. pattern n. apply natlike_ind; [apply rel_prime_sym, rel_prime_1 | | exact Hn].
  intros x Hx IH. rewrite Z.pow_succ_r by exact Hx. apply rel_prime_mult; [| exact IH]. apply rel_prime_sym, prime_rel_prime; [exact prime_2 |].
  intros [q E]. rewrite E, Z.odd_mul, andb_false_r in Hs. discriminate.
Qed.

(** The table has a power of two of entries and the step is odd: no place is visited twice *)
Lemma probe_inj n hash j k : 0 <= n -> 0 <= hash -> 0 <= j < 2 ^ n -> 0 <= k < 2 ^ n -> probe n hash j = probe n hash k -> j = k.
Proof.
  intros Hn Hh Hj Hk E. unfold probe in E. destruct (step_odd hash Hh) as [Hodd _].
  assert (Hd : (2 ^ n | step_of hash * (j - k))).
  { replace (step_of hash * (j - k)) with ((hash + j * step_of hash) - (hash + k * step_of hash)) by ring. apply Z.mod_divide; [apply Z.pow_nonzero; lia |].
    rewrite Zminus_mod, E, Z.sub_diag. apply Z.mod_0_l, Z.pow_nonzero; lia. }
  apply Gauss in Hd; [| now apply odd_coprime]. destruct Hd as [q Hq]. assert (q = 0) by nia. nia.
Qed.

(** All places are visited *)
Lemma probe_surj n hash i : 0 <= n -> 0 <= hash -> 0 <= i < 2 ^ n -> exists k, 0 <= k < 2 ^ n /\ probe n hash k = i.
Proof.
  intros Hn Hh Hi. set (m := Z.to_nat (2 ^ n)). set (l := map (fun k => probe n hash (Z.of_nat k)) (seq 0 m)). set (all := map Z.of_nat (seq 0 m)).
  assert (Hl : NoDup l).
  { apply NoDup_fmap_2_strong; [| apply NoDup_ListNoDup, seq_NoDup]. intros x y Hx Hy E. apply list_elem_of_In, in_seq in Hx, Hy.
    apply probe_inj in E; unfold m in *; lia. }
  assert (Hincl : List.incl l all).
  { intros x Hx. apply in_map_iff in Hx as (k & <- & Hk). pose proof (probe_range n hash (Z.of_nat k) Hn) as Hr. apply in_map_iff. exists (Z.to_nat (probe n hash (Z.of_nat k))).
    split; [lia |]. apply in_seq. unfold m. lia. }
  assert (Hlen : (length all <= length l)%nat) by (unfold l, all; now rewrite !length_map).
  assert (Hin : In i l).
  { apply (NoDup_length_incl (proj1 (NoDup_ListNoDup l) Hl) Hlen Hincl). apply in_map_iff. exists (Z.to_nat i). split; [lia | apply in_seq; unfold m; lia]. }
  apply in_map_iff in Hin as (k & E & Hk). apply in_seq in Hk. exists (Z.of_nat k). split; [unfold m in Hk; lia | exact E].
Qed.

(** One step of a loop over the table *)
Lemma probe_next n hash k : 0 <= n <= 30 -> 0 <= hash -> Z.land (u32 (probe n hash k + step_of hash)) (u32 (2 ^ n - 1)) = probe n hash (k + 1).
Proof.
  intros Hn Hh. pose proof (probe_range n hash k ltac:(lia)) as Hr. destruct (step_odd hash Hh) as [_ Hs]. assert (Hp : 2 ^ n <= 2 ^ 30) by (apply Z.pow_le_mono_r; lia). change (2 ^ 30) with 1073741824 in Hp.
  rewrite !u32_small by (unfold is_u32; lia). rewrite (land_ones' _ n) by (reflexivity || lia). unfold probe. rewrite Zplus_mod_idemp_l. f_equal. ring.
Qed.

Lemma probe_start n hash : 0 <= n <= 30 -> 0 <= hash -> Z.land hash (u32 (2 ^ n - 1)) = probe n hash 0.
Proof.
  intros Hn Hh. assert (Hp : 2 ^ n <= 2 ^ 30) by (apply Z.pow_le_mono_r; lia). assert (0 < 2 ^ n) by (apply Z.pow_pos_nonneg; lia). change (2 ^ 30) with 1073741824 in Hp.
  rewrite u32_small by (unfold is_u32; lia). rewrite (land_ones' _ n) by (reflexivity || lia). unfold probe. f_equal. ring.
Qed.

(** ** The table *)

Inductive item := EMPTY | TOMB | USED (cp : Z) (second : bool).

Definition item_at (h : ecma_property_hashmap_t) (i : Z) : item :=
  let cp := nth (Z.to_nat i) (pair_list h) 0 in
  let b := bit_at (bits h) i in
  if cp =? ECMA_NULL_POINTER then if b then TOMB else EMPTY else USED cp b.

Definition is_empty (x : item) : bool := match x with EMPTY => true | _ => false end.
Definition is_used (x : item) : bool := match x with USED _ _ => true | _ => false end.

Fixpoint count (f : Z -> bool) (m : nat) : Z := match m with O => 0 | S m => count f m + Z.b2z (f (Z.of_nat m)) end.

Lemma count_update f g i m : (forall j, 0 <= j -> j <> i -> g j = f j) -> 0 <= i ->
  count g m = if i <? Z.of_nat m then count f m - Z.b2z (f i) + Z.b2z (g i) else count f m.
Proof.
  intros H Hi. induction m as [| m IH]; [destruct (Z.ltb_spec i (Z.of_nat 0)); [lia | reflexivity] |]. cbn [count]. rewrite IH. rewrite Nat2Z.inj_succ.
  destruct (Z.ltb_spec i (Z.of_nat m)), (Z.ltb_spec i (Z.succ (Z.of_nat m))); try lia.
  - rewrite (H (Z.of_nat m)) by lia. lia.
  - assert (i = Z.of_nat m) as -> by lia. lia.
  - rewrite (H (Z.of_nat m)) by lia. lia.
Qed.

Lemma count_ext f g m : (forall j, 0 <= j < Z.of_nat m -> g j = f j) -> count g m = count f m.
Proof. intros H. induction m as [| m IH]; [reflexivity |]. cbn [count]. rewrite IH by (intros j Hj; apply H; lia). now rewrite H by lia. Qed.

Lemma count_range f m : 0 <= count f m <= Z.of_nat m.
Proof. induction m as [| m IH]; cbn [count]; [lia |]. destruct (f (Z.of_nat m)); cbn [Z.b2z]; lia. Qed.

Lemma count_pos f m : 0 < count f m -> exists i, 0 <= i < Z.of_nat m /\ f i = true.
Proof.
  induction m as [| m IH]; cbn [count]; intros H; [lia |]. destruct (f (Z.of_nat m)) eqn:E; [exists (Z.of_nat m); split; [lia | exact E] |].
  cbn [Z.b2z] in H. destruct IH as (i & Hi & Hf); [lia | exists i; split; [lia | exact Hf]].
Qed.

Lemma count_le f g m : (forall i, 0 <= i < Z.of_nat m -> f i = true -> g i = true) -> count f m <= count g m.
Proof.
  induction m as [| m IH]; intros H; cbn [count]; [lia |]. specialize (IH ltac:(intros i Hi; apply H; lia)). specialize (H (Z.of_nat m) ltac:(lia)).
  destruct (f (Z.of_nat m)); [rewrite H by reflexivity; lia |]. destruct (g (Z.of_nat m)); cbn [Z.b2z]; lia.
Qed.

Lemma first_such (P : Z -> bool) (n : nat) : P (Z.of_nat n) = true -> exists k, 0 <= k <= Z.of_nat n /\ P k = true /\ forall j, 0 <= j < k -> P j = false.
Proof.
  induction n as [n IH] using lt_wf_ind. intros Hn. destruct (existsb (fun j => P (Z.of_nat j)) (seq 0 n)) eqn:E.
  - apply existsb_exists in E as (j & Hj & Pj). apply in_seq in Hj. destruct (IH j ltac:(lia) Pj) as (k & Hk & H). exists k. split; [lia | exact H].
  - exists (Z.of_nat n). splits; [lia | lia | exact Hn |]. intros j Hj. destruct (P j) eqn:Pj; [| reflexivity]. exfalso.
    assert (Ht : existsb (fun j => P (Z.of_nat j)) (seq 0 n) = true) by (apply existsb_exists; exists (Z.to_nat j); split; [apply in_seq; lia | now rewrite Z2Nat.id by lia]).
    congruence.
Qed.

(** The shape of a table with [2 ^ n] entries *)
Record shaped (n : Z) (h : ecma_property_hashmap_t) : Prop := mk_shaped {
  shape_n : 5 <= n <= 30;
  shape_max : max_property_count h = 2 ^ n;
  shape_pairs : zlength (pair_list h) = 2 ^ n;
  shape_bits : 8 * zlength (bits h) = 2 ^ n
}.

(** The table has the properties [live], each of them where a search finds it *)
Record holds (n : Z) (h : ecma_property_hashmap_t) (live : Z * bool -> Prop) (hash : Z * bool -> Z) : Prop := mk_holds {
  holds_only : forall i cp b, 0 <= i < 2 ^ n -> item_at h i = USED cp b -> live (cp, b);
  holds_all : forall cp b, live (cp, b) -> exists k, 0 <= k < 2 ^ n /\ item_at h (probe n (hash (cp, b)) k) = USED cp b
    /\ forall j, 0 <= j < k -> item_at h (probe n (hash (cp, b)) j) <> EMPTY;
  holds_once : forall i j cp b, 0 <= i < 2 ^ n -> 0 <= j < 2 ^ n -> item_at h i = USED cp b -> item_at h j = USED cp b -> i = j
}.

Definition empties (n : Z) (h : ecma_property_hashmap_t) : Z := count (fun i => is_empty (item_at h i)) (Z.to_nat (2 ^ n)).
Definition unused (n : Z) (h : ecma_property_hashmap_t) : Z := count (fun i => negb (is_used (item_at h i))) (Z.to_nat (2 ^ n)).

Lemma pow_bounds n : 5 <= n <= 30 -> 32 <= 2 ^ n <= 1073741824.
Proof. intros Hn. split; [change 32 with (2 ^ 5) | change 1073741824 with (2 ^ 30)]; apply Z.pow_le_mono_r; lia. Qed.

(** Tables of the same shape that differ in one entry *)
Definition updates (n : Z) (h : ecma_property_hashmap_t) (idx : Z) (x : item) (h' : ecma_property_hashmap_t) : Prop :=
  shaped n h' /\ next_of_map h' = next_of_map h /\ forall i, 0 <= i < 2 ^ n -> item_at h' i = if i =? idx then x else item_at h i.

Lemma update_items n h idx cp (b : bool) nulls unused_entries bits' : shaped n h -> 0 <= idx < 2 ^ n -> length bits' = length (bits h) ->
  (forall i, 0 <= i < 2 ^ n -> bit_at bits' i = if i =? idx then b else bit_at (bits h) i) ->
  updates n h idx (if cp =? ECMA_NULL_POINTER then if b then TOMB else EMPTY else USED cp b)
    (mk_hashmap (next_of_map h) (max_property_count h) nulls unused_entries (<[Z.to_nat idx := cp]> (pair_list h)) bits').
Proof.
  intros [Hn Hm Hp Hb] Hi Hlen Eb. split; [| split; [reflexivity |]].
  - constructor; cbn [max_property_count pair_list PropHashmap.bits]; unfold zlength in *; rewrite ?length_insert, ?Hlen; assumption.
  - intros i Hr. unfold item_at. cbn [pair_list PropHashmap.bits].
    assert (Ec : nth (Z.to_nat i) (<[Z.to_nat idx := cp]> (pair_list h)) 0 = if i =? idx then cp else nth (Z.to_nat i) (pair_list h) 0).
    { rewrite !nth_lookup. destruct (Z.eqb_spec i idx) as [-> | Hne]; [rewrite list_lookup_insert_eq; [reflexivity |] | rewrite list_lookup_insert_ne; [reflexivity | lia]]. unfold zlength in Hp. lia. }
    rewrite Eb, Ec by exact Hr. now destruct (i =? idx).
Qed.

Lemma update_entry n h idx cp (b : bool) nulls unused_entries : shaped n h -> 0 <= idx < 2 ^ n ->
  let bits' := if b then ECMA_PROPERTY_HASHMAP_SET_BIT (bits h) idx else ECMA_PROPERTY_HASHMAP_CLEAR_BIT (bits h) idx in
  updates n h idx (if cp =? ECMA_NULL_POINTER then if b then TOMB else EMPTY else USED cp b)
    (mk_hashmap (next_of_map h) (max_property_count h) nulls unused_entries (<[Z.to_nat idx := cp]> (pair_list h)) bits').
Proof.
  intros Hs Hi bits'. pose proof (shape_bits _ _ Hs) as Hb. apply update_items; [exact Hs | exact Hi | |].
  - subst bits'. unfold ECMA_PROPERTY_HASHMAP_SET_BIT, ECMA_PROPERTY_HASHMAP_CLEAR_BIT. destruct b; apply length_insert.
  - intros i Hr. subst bits'. destruct b; [rewrite bit_set by lia | rewrite bit_clear by lia]; rewrite (Z.eqb_sym idx i); now destruct (i =? idx).
Qed.

Lemma updates_counts n h idx x h' : shaped n h -> 0 <= idx < 2 ^ n -> updates n h idx x h' ->
  empties n h' = empties n h - Z.b2z (is_empty (item_at h idx)) + Z.b2z (is_empty x)
  /\ unused n h' = unused n h - Z.b2z (negb (is_used (item_at h idx))) + Z.b2z (negb (is_used x)).
Proof.
  intros [Hn _ _ _] Hi (_ & _ & Hu). pose proof (pow_bounds n Hn) as Hpow. unfold empties, unused. set (m := Z.to_nat (2 ^ n)).
  assert (Hm : Z.of_nat m = 2 ^ n) by (unfold m; lia).
  assert (C : forall f : item -> bool, count (fun i => f (item_at h' i)) m = count (fun i => f (item_at h i)) m - Z.b2z (f (item_at h idx)) + Z.b2z (f x)).
  { intros f. rewrite (count_ext (fun i => f (if i =? idx then x else item_at h i))) by (intros j Hj; now rewrite Hu by lia).
    rewrite (count_update (fun i => f (item_at h i)) _ idx) by (lia || (intros j Hj Hne; now rewrite (proj2 (Z.eqb_neq j idx) Hne))).
    rewrite (proj2 (Z.ltb_lt _ _)) by lia. now rewrite Z.eqb_refl. }
  split; [apply C | apply (C (fun x => negb (is_used x)))].
Qed.

(** ** The loops *)

Section Loops.
Context (n : Z) (h : ecma_property_hashmap_t) (Hs : shaped n h) (hv : Z) (Hhv : 0 <= hv).

Local Abbreviation place k := (probe n hv k).

Lemma entry_item k : exists cp, entry_at h (place k) = Some cp /\ item_at h (place k) = if cp =? ECMA_NULL_POINTER then if bit_at (bits h) (place k) then TOMB else EMPTY else USED cp (bit_at (bits h) (place k)).
Proof.
  destruct Hs as [Hn _ Hp _]. pose proof (probe_range n hv k ltac:(lia)) as Hr. unfold entry_at, item_at. unfold zlength in Hp.
  destruct (lookup_lt_is_Some_2 (pair_list h) (Z.to_nat (place k)) ltac:(lia)) as [cp E]. exists cp. split; [exact E |]. now rewrite nth_lookup, E.
Qed.

Lemma next_place k : Z.land (u32 (place k + step_of hv)) (u32 (max_property_count h - 1)) = place (k + 1).
Proof. destruct Hs as [Hn -> _ _]. apply probe_next; [lia | exact Hhv]. Qed.

Lemma first_place : Z.land hv (u32 (max_property_count h - 1)) = place 0.
Proof. destruct Hs as [Hn -> _ _]. apply probe_start; [lia | exact Hhv]. Qed.

Lemma find_null_loop j : forall fuel k, Z.of_nat j <= Z.of_nat fuel -> is_used (item_at h (place (k + Z.of_nat j))) = false ->
  (forall i, 0 <= i < Z.of_nat j -> is_used (item_at h (place (k + i))) = true) ->
  find_null fuel h (place k) (step_of hv) (u32 (max_property_count h - 1)) = Some (place (k + Z.of_nat j)).
Proof.
  induction j as [| j IH]; intros fuel k Hf He Hu.
  - rewrite Z.add_0_r in *. destruct (entry_item k) as (cp & E & Ei). destruct fuel; cbn [find_null]; rewrite E; rewrite Ei in He; destruct (cp =? ECMA_NULL_POINTER); (reflexivity || discriminate).
  - destruct fuel as [| fuel]; [lia |]. destruct (entry_item k) as (cp & E & Ei). cbn [find_null]. rewrite E. specialize (Hu 0 ltac:(lia)) as H0. rewrite Z.add_0_r, Ei in H0.
    destruct (cp =? ECMA_NULL_POINTER); [destruct (bit_at (bits h) (place k)); discriminate |]. rewrite next_place.
    replace (k + Z.of_nat (S j)) with (k + 1 + Z.of_nat j) in * by lia. apply IH; [lia | exact He |]. intros i Hi. specialize (Hu (i + 1) ltac:(lia)). now replace (k + 1 + i) with (k + (i + 1)) by lia.
Qed.

(** An entry without a pointer is found, the first on the way *)
Lemma find_null_spec : 0 < unused n h -> exists k, 0 <= k < 2 ^ n /\ is_used (item_at h (place k)) = false /\ (forall j, 0 <= j < k -> is_used (item_at h (place j)) = true)
  /\ find_null (table_fuel h) h (Z.land hv (u32 (max_property_count h - 1))) (step_of hv) (u32 (max_property_count h - 1)) = Some (place k).
Proof.
  intros Hpos. pose proof (pow_bounds n (shape_n _ _ Hs)) as Hpow. unfold unused in Hpos. apply count_pos in Hpos as (i & Hi & Hf). apply negb_true_iff in Hf. rewrite Z2Nat.id in Hi by lia.
  destruct (probe_surj n hv i ltac:(pose proof (shape_n _ _ Hs); lia) Hhv Hi) as (k0 & Hk0 & <-).
  destruct (first_such (fun k => negb (is_used (item_at h (place k)))) (Z.to_nat k0)) as (k & Hk & Pk & Hmin).
  { rewrite Z2Nat.id by lia. now rewrite Hf. }
  apply negb_true_iff in Pk. exists k. splits; [lia | lia | exact Pk | intros j Hj; specialize (Hmin j Hj); now apply negb_false_iff in Hmin |].
  rewrite first_place. pose proof (find_null_loop (Z.to_nat k) (table_fuel h) 0) as L. replace (0 + Z.of_nat (Z.to_nat k)) with k in L by lia. apply L.
  - unfold table_fuel. pose proof (shape_pairs _ _ Hs) as Hp. unfold zlength in Hp. lia.
  - exact Pk.
  - intros i Hi2. specialize (Hmin (0 + i) ltac:(lia)). now apply negb_false_iff in Hmin.
Qed.

Lemma find_property_loop cp b j : cp <> ECMA_NULL_POINTER -> forall fuel k, Z.of_nat j <= Z.of_nat fuel -> item_at h (place (k + Z.of_nat j)) = USED cp b ->
  (forall i, 0 <= i < Z.of_nat j -> item_at h (place (k + i)) <> USED cp b) ->
  find_property fuel h (place k) (step_of hv) (u32 (max_property_count h - 1)) cp b = Some (place (k + Z.of_nat j)).
Proof.
  intros Hcp. induction j as [| j IH]; intros fuel k Hf He Hu.
  - rewrite Z.add_0_r in *. destruct (entry_item k) as (c & E & Ei). rewrite He in Ei. destruct (Z.eqb_spec c ECMA_NULL_POINTER) as [Hc | Hc]; [destruct (bit_at (bits h) (place k)); discriminate |].
    injection Ei as <- Eb. destruct fuel; cbn [find_property]; rewrite E; rewrite (proj2 (Z.eqb_neq _ _) Hc), Z.eqb_refl; fold (bit_at (bits h) (place k)); rewrite <- Eb, Bool.eqb_reflx; reflexivity.
  - destruct fuel as [| fuel]; [lia |]. destruct (entry_item k) as (c & E & Ei). cbn [find_property]. rewrite E. specialize (Hu 0 ltac:(lia)) as H0. rewrite Z.add_0_r, Ei in H0.
    assert (Et : negb (c =? ECMA_NULL_POINTER) && (c =? cp) && Bool.eqb (ECMA_PROPERTY_HASHMAP_GET_BIT (bits h) (place k)) b = false).
    { destruct (c =? ECMA_NULL_POINTER); [reflexivity |]. cbn [negb andb]. fold (bit_at (bits h) (place k)). destruct (Z.eqb_spec c cp) as [-> |]; [cbn [andb] | reflexivity].
      destruct (bit_at (bits h) (place k)), b; (reflexivity || (exfalso; now apply H0)). }
    rewrite Et, next_place. replace (k + Z.of_nat (S j)) with (k + 1 + Z.of_nat j) in * by lia. apply IH; [lia | exact He |].
    intros i Hi. specialize (Hu (i + 1) ltac:(lia)). now replace (k + 1 + i) with (k + (i + 1)) by lia.
Qed.

Section Find.
Context (matches : Z -> bool -> option bool) (mb : Z * bool -> bool).
Context (Hmatch : forall i cp b, 0 <= i < 2 ^ n -> item_at h i = USED cp b -> matches cp b = Some (mb (cp, b))).

Definition passes (x : item) : Prop := match x with EMPTY => False | TOMB => True | USED cp b => mb (cp, b) = false end.

Lemma find_loop_spec j r : forall fuel k, Z.of_nat j <= Z.of_nat fuel ->
  match item_at h (place (k + Z.of_nat j)) with EMPTY => r = None | TOMB => False | USED cp b => r = Some (cp, b) /\ mb (cp, b) = true end ->
  (forall i, 0 <= i < Z.of_nat j -> passes (item_at h (place (k + i)))) ->
  find_loop matches fuel h (place k) (step_of hv) (u32 (max_property_count h - 1)) = Some r.
Proof.
  pose proof (shape_n _ _ Hs) as Hn. induction j as [| j IH]; intros fuel k Hf He Hu; destruct (entry_item k) as (c & E & Ei); pose proof (probe_range n hv k ltac:(lia)) as Hr.
  - rewrite Z.add_0_r in *. destruct fuel; cbn [find_loop]; rewrite E; fold (bit_at (bits h) (place k)); rewrite Ei in He;
      (destruct (c =? ECMA_NULL_POINTER); cbn [negb]; [destruct (bit_at (bits h) (place k)); [easy | now subst r] |]);
      destruct He as [-> Hm]; rewrite (Hmatch _ _ _ Hr Ei), Hm; reflexivity.
  - destruct fuel as [| fuel]; [lia |]. cbn [find_loop]. rewrite E. fold (bit_at (bits h) (place k)). specialize (Hu 0 ltac:(lia)) as H0. rewrite Z.add_0_r, Ei in H0.
    assert (Hnext : find_loop matches fuel h (Z.land (u32 (place k + step_of hv)) (u32 (max_property_count h - 1))) (step_of hv) (u32 (max_property_count h - 1)) = Some r).
    { rewrite next_place. replace (k + Z.of_nat (S j)) with (k + 1 + Z.of_nat j) in * by lia. apply IH; [lia | exact He |].
      intros i Hi. specialize (Hu (i + 1) ltac:(lia)). now replace (k + 1 + i) with (k + (i + 1)) by lia. }
    destruct (c =? ECMA_NULL_POINTER); cbn [negb passes] in *; [destruct (bit_at (bits h) (place k)); [exact Hnext | easy] |].
    rewrite (Hmatch _ _ _ Hr Ei), H0. exact Hnext.
Qed.

(** The property that is searched for is found when it is there; no other is *)
Lemma find_entry_spec live hash : holds n h live hash -> 0 < empties n h -> (forall x, live x -> mb x = true -> hash x = hv) ->
  exists r, find_entry matches h hv = Some r /\ match r with Some x => live x /\ mb x = true | None => forall x, live x -> mb x = false end.
Proof.
  intros Hh Hpos Hhash. pose proof (pow_bounds n (shape_n _ _ Hs)) as Hpow. unfold empties in Hpos. apply count_pos in Hpos as (i0 & Hi0 & Hf0). rewrite Z2Nat.id in Hi0 by lia.
  destruct (probe_surj n hv i0 ltac:(pose proof (shape_n _ _ Hs); lia) Hhv Hi0) as (k0 & Hk0 & <-).
  set (stop := fun k => match item_at h (place k) with EMPTY => true | TOMB => false | USED cp b => mb (cp, b) end).
  destruct (first_such stop (Z.to_nat k0)) as (k & Hk & Pk & Hmin).
  { rewrite Z2Nat.id by lia. unfold stop. destruct (item_at h (place k0)); [reflexivity | discriminate | discriminate]. }
  pose proof (probe_range n hv k ltac:(pose proof (shape_n _ _ Hs); lia)) as Hr.
  set (r := match item_at h (place k) with USED cp b => Some (cp, b) | _ => None end).
  assert (Hrun : find_entry matches h hv = Some r).
  { unfold find_entry. rewrite first_place. apply (find_loop_spec (Z.to_nat k)).
    - unfold table_fuel. pose proof (shape_pairs _ _ Hs) as Hp. unfold zlength in Hp. lia.
    - replace (0 + Z.of_nat (Z.to_nat k)) with k by lia. unfold r, stop in *. destruct (item_at h (place k)); [reflexivity | discriminate | now split].
    - intros i Hi. specialize (Hmin (0 + i) ltac:(lia)). unfold stop in Hmin. destruct (item_at h (place (0 + i))); [discriminate | exact I | exact Hmin]. }
  exists r. split; [exact Hrun |]. unfold r, stop in *. destruct (item_at h (place k)) as [| | cp b] eqn:E; [| discriminate | split; [exact (holds_only _ _ _ _ Hh _ _ _ Hr E) | exact Pk]].
  intros [cp b] Hx. destruct (mb (cp, b)) eqn:Hm; [| reflexivity]. exfalso. destruct (holds_all _ _ _ _ Hh cp b Hx) as (k1 & Hk1 & E1 & Hbefore). rewrite (Hhash _ Hx Hm) in *.
  destruct (Z.lt_trichotomy k k1) as [Hlt | [-> | Hgt]]; [apply (Hbefore k); [lia | exact E] | congruence |]. specialize (Hmin k1 ltac:(lia)). rewrite E1 in Hmin. congruence.
Qed.
End Find.
End Loops.

(** ** Insertion and deletion *)

Lemma holds_insert n h live hash cp b k h' : shaped n h -> holds n h live hash -> 0 <= hash (cp, b) -> ~ live (cp, b) -> 0 <= k < 2 ^ n ->
  is_used (item_at h (probe n (hash (cp, b)) k)) = false -> (forall j, 0 <= j < k -> is_used (item_at h (probe n (hash (cp, b)) j)) = true) ->
  updates n h (probe n (hash (cp, b)) k) (USED cp b) h' -> holds n h' (fun x => x = (cp, b) \/ live x) hash.
Proof.
  intros Hs Hh H0 Hnew Hk Hfree Hbefore (Hs' & _ & Hu). pose proof (shape_n _ _ Hs) as Hn. set (idx := probe n (hash (cp, b)) k) in *.
  assert (Hidx : 0 <= idx < 2 ^ n) by (apply probe_range; lia). assert (P : forall hv j, 0 <= probe n hv j < 2 ^ n) by (intros; apply probe_range; lia).
  constructor.
  - intros i c d Hi E. rewrite Hu in E by exact Hi. destruct (i =? idx); [injection E as <- <-; now left | right; exact (holds_only _ _ _ _ Hh i c d Hi E)].
  - intros c d [[= -> ->] | Hl].
    + exists k. splits; [lia | lia | rewrite Hu by apply P; fold idx; now rewrite Z.eqb_refl |]. intros j Hj. rewrite Hu by apply P.
      destruct (_ =? idx); [discriminate |]. specialize (Hbefore j Hj). now destruct (item_at h (probe n (hash (cp, b)) j)).
    + destruct (holds_all _ _ _ _ Hh c d Hl) as (k1 & Hk1 & E1 & Hb1). exists k1. splits; [lia | lia | |].
      * rewrite Hu by apply P. destruct (Z.eqb_spec (probe n (hash (c, d)) k1) idx) as [E | _]; [| exact E1]. rewrite E in E1. rewrite E1 in Hfree. discriminate.
      * intros j Hj. rewrite Hu by apply P. destruct (_ =? idx); [discriminate | now apply Hb1].
  - intros i j c d Hi Hj Ei Ej. rewrite Hu in Ei by exact Hi. rewrite Hu in Ej by exact Hj. destruct (Z.eqb_spec i idx) as [-> | Hni], (Z.eqb_spec j idx) as [-> | Hnj]; [reflexivity | | |].
    + injection Ei as <- <-. destruct Hnew. exact (holds_only _ _ _ _ Hh j _ _ Hj Ej).
    + injection Ej as <- <-. destruct Hnew. exact (holds_only _ _ _ _ Hh i _ _ Hi Ei).
    + exact (holds_once _ _ _ _ Hh i j c d Hi Hj Ei Ej).
Qed.

Lemma holds_delete n h live hash cp b idx h' : shaped n h -> holds n h live hash -> 0 <= idx < 2 ^ n -> item_at h idx = USED cp b ->
  updates n h idx TOMB h' -> holds n h' (fun x => x <> (cp, b) /\ live x) hash.
Proof.
  intros Hs Hh Hidx Ex (Hs' & _ & Hu). pose proof (shape_n _ _ Hs) as Hn. assert (P : forall hv j, 0 <= probe n hv j < 2 ^ n) by (intros; apply probe_range; lia).
  constructor.
  - intros i c d Hi E. rewrite Hu in E by exact Hi. destruct (Z.eqb_spec i idx) as [-> | Hne]; [discriminate |]. split; [| exact (holds_only _ _ _ _ Hh i c d Hi E)].
    intros [= -> ->]. apply Hne. exact (holds_once _ _ _ _ Hh i idx cp b Hi Hidx E Ex).
  - intros c d [Hne Hl]. destruct (holds_all _ _ _ _ Hh c d Hl) as (k & Hk & E & Hbefore). exists k. splits; [lia | lia | |].
    + rewrite Hu by apply P. destruct (Z.eqb_spec (probe n (hash (c, d)) k) idx) as [Ei | _]; [| exact E]. rewrite Ei, Ex in E. injection E as -> ->. easy.
    + intros j Hj. rewrite Hu by apply P. destruct (_ =? idx); [discriminate | now apply Hbefore].
  - intros i j c d Hi Hj Ei Ej. rewrite Hu in Ei by exact Hi. rewrite Hu in Ej by exact Hj. destruct (i =? idx); [discriminate |]. destruct (j =? idx); [discriminate |].
    exact (holds_once _ _ _ _ Hh i j c d Hi Hj Ei Ej).
Qed.

(** The invariant of a hash map with its counters: one eighth of the entries but one are
    empty at least, so that every search ends *)
Record table_ok (n : Z) (h : ecma_property_hashmap_t) (live : Z * bool -> Prop) (hash : Z * bool -> Z) : Prop := mk_table_ok {
  table_shape : shaped n h;
  table_holds : holds n h live hash;
  table_nulls : null_count h = empties n h;
  table_unused : unused_count h = unused n h;
  table_room : 2 ^ n / 8 - 1 <= empties n h
}.

Lemma unused_range n h : shaped n h -> 0 <= unused n h <= 2 ^ n.
Proof. intros Hs. pose proof (pow_bounds n (shape_n _ _ Hs)). unfold unused. pose proof (count_range (fun i => negb (is_used (item_at h i))) (Z.to_nat (2 ^ n))). lia. Qed.

Lemma empties_le n h : empties n h <= unused n h.
Proof. apply count_le. intros i _. now destruct (item_at h i). Qed.

Lemma item_used cp (b : bool) : cp <> ECMA_NULL_POINTER -> (if cp =? ECMA_NULL_POINTER then if b then TOMB else EMPTY else USED cp b) = USED cp b.
Proof. intros H. now rewrite (proj2 (Z.eqb_neq _ _) H). Qed.

Lemma empty_or_tomb h i : is_used (item_at h i) = false -> bit_at (bits h) i = negb (is_empty (item_at h i)).
Proof. unfold item_at. destruct (_ =? ECMA_NULL_POINTER); [| discriminate]. now destruct (bit_at (bits h) i). Qed.

Lemma insert_entry_spec n h live hash cp b : table_ok n h live hash -> 0 <= hash (cp, b) -> ~ live (cp, b) -> cp <> ECMA_NULL_POINTER ->
  max_property_count h / 8 <= null_count h ->
  exists h', insert_entry h (hash (cp, b)) cp b = Some h' /\ table_ok n h' (fun x => x = (cp, b) \/ live x) hash /\ next_of_map h' = next_of_map h
    /\ max_property_count h' = max_property_count h /\ unused n h' = unused n h - 1.
Proof.
  intros [Hs Hh Hnu Hun Hro] H0 Hnew Hcp Hguard. pose proof (pow_bounds n (shape_n _ _ Hs)) as Hpow. pose proof (empties_le n h) as Hle. pose proof (unused_range n h Hs) as Hr.
  rewrite Hnu, (shape_max _ _ Hs) in Hguard. assert (H8 : 4 <= 2 ^ n / 8) by (apply Z.div_le_lower_bound; lia).
  destruct (find_null_spec n h Hs (hash (cp, b)) H0 ltac:(lia)) as (k & Hk & Hfree & Hbefore & Hfind). set (idx := probe n (hash (cp, b)) k) in *.
  assert (Hidx : 0 <= idx < 2 ^ n) by (apply probe_range; pose proof (shape_n _ _ Hs); lia).
  unfold insert_entry. rewrite Hfind. eexists. split; [reflexivity |]. unfold with_counts, with_entry, with_bits. cbn [next_of_map max_property_count null_count unused_count pair_list bits].
  fold (bit_at (bits h) idx). set (nulls := if negb (bit_at (bits h) idx) then _ else _).
  pose proof (update_entry n h idx cp b nulls (u32 (unused_count h - 1)) Hs Hidx) as Hup. cbv zeta in Hup. rewrite item_used in Hup by exact Hcp.
  set (h' := mk_hashmap _ _ _ _ _ _) in *. destruct (updates_counts n h idx (USED cp b) h' Hs Hidx Hup) as [He Hu]. rewrite Hfree in Hu. cbn [is_used is_empty negb Z.b2z] in He, Hu.
  split; [| splits; [reflexivity | reflexivity | lia]]. constructor; [apply Hup | exact (holds_insert n h live hash cp b k h' Hs Hh H0 Hnew Hk Hfree Hbefore Hup) | | |].
  - unfold h'. cbn [null_count]. fold h'. rewrite He. unfold nulls. rewrite (empty_or_tomb h idx Hfree), negb_involutive, Hnu. destruct (is_empty (item_at h idx)); cbn [Z.b2z]; [rewrite u32_small by (unfold is_u32; lia); lia | lia].
  - unfold h'. cbn [unused_count]. fold h'. rewrite Hu, Hun, u32_small by (unfold is_u32; lia). lia.
  - rewrite He. destruct (is_empty (item_at h idx)); cbn [Z.b2z]; lia.
Qed.

Lemma delete_entry_spec n h live hash cp b : table_ok n h live hash -> 0 <= hash (cp, b) -> live (cp, b) -> cp <> ECMA_NULL_POINTER ->
  exists h' status, delete_entry h (hash (cp, b)) cp b = Some (h', status) /\ next_of_map h' = next_of_map h /\ max_property_count h' = max_property_count h
    /\ match status with
       | ECMA_PROPERTY_HASHMAP_DELETE_NO_HASHMAP => False
       | ECMA_PROPERTY_HASHMAP_DELETE_HAS_HASHMAP => table_ok n h' (fun x => x <> (cp, b) /\ live x) hash /\ 4 * unused n h' <= 3 * 2 ^ n
       | ECMA_PROPERTY_HASHMAP_DELETE_RECREATE_HASHMAP => True
       end.
Proof.
  intros [Hs Hh Hnu Hun Hro] H0 Hlive Hcp. pose proof (pow_bounds n (shape_n _ _ Hs)) as Hpow. pose proof (unused_range n h Hs) as Hr.
  unfold delete_entry. set (h1 := with_counts h (null_count h) (u32 (unused_count h + 1))). destruct (Z.ltb_spec (Z.shiftr (u32 (max_property_count h1 * 3)) 2) (unused_count h1)) as [_ | Hfew]; [eexists _, _; splits; reflexivity |].
  assert (Hs1 : shaped n h1) by (destruct Hs; now constructor). destruct (holds_all _ _ _ _ Hh cp b Hlive) as (k & Hk & E & _).
  assert (Hp : forall j, 0 <= probe n (hash (cp, b)) j < 2 ^ n) by (intros j; apply probe_range; pose proof (shape_n _ _ Hs); lia).
  assert (Hfind : find_property (table_fuel h1) h1 (Z.land (hash (cp, b)) (u32 (max_property_count h1 - 1))) (step_of (hash (cp, b))) (u32 (max_property_count h1 - 1)) cp b = Some (probe n (hash (cp, b)) k)).
  { rewrite (first_place n h1 Hs1 (hash (cp, b)) H0). pose proof (find_property_loop n h1 Hs1 (hash (cp, b)) H0 cp b (Z.to_nat k) Hcp (table_fuel h1) 0) as L.
    replace (0 + Z.of_nat (Z.to_nat k)) with k in L by lia. apply L; [unfold table_fuel; pose proof (shape_pairs _ _ Hs1) as Hl; unfold zlength in Hl; lia | exact E |].
    intros i Hi Ei. apply (holds_once _ _ _ _ Hh) with (i := probe n (hash (cp, b)) (0 + i)) in E; [| apply Hp | apply Hp | exact Ei].
    apply probe_inj in E; pose proof (shape_n _ _ Hs); lia. }
  rewrite Hfind. set (idx := probe n (hash (cp, b)) k) in *. eexists _, _. split; [reflexivity |]. unfold with_entry, with_bits. cbn [next_of_map max_property_count null_count unused_count pair_list bits].
  split; [reflexivity | split; [reflexivity |]]. pose proof (update_entry n h idx ECMA_NULL_POINTER true (null_count h1) (unused_count h1) Hs (Hp k)) as Hup. cbv zeta in Hup. change (ECMA_NULL_POINTER =? ECMA_NULL_POINTER) with true in Hup. cbv iota in Hup.
  change (next_of_map h1) with (next_of_map h). change (max_property_count h1) with (max_property_count h). change (pair_list h1) with (pair_list h). change (bits h1) with (bits h).
  set (h' := mk_hashmap _ _ _ _ _ _) in *. destruct (updates_counts n h idx TOMB h' Hs (Hp k) Hup) as [He Hu]. rewrite E in He, Hu. cbn [is_used is_empty negb Z.b2z] in He, Hu.
  pose proof (unused_range n h' (proj1 Hup)) as Hr'.
  assert (Hroom : 4 * unused n h' <= 3 * 2 ^ n).
  { change (unused_count h1) with (u32 (unused_count h + 1)) in Hfew. change (max_property_count h1) with (max_property_count h) in Hfew. rewrite Hun, (shape_max _ _ Hs) in Hfew. rewrite !u32_small in Hfew by (unfold is_u32; lia).
    rewrite Z.shiftr_div_pow2 in Hfew by lia. change (2 ^ 2) with 4 in Hfew. Z.div_mod_to_equations; lia. }
  split; [| exact Hroom]. constructor; [apply Hup | exact (holds_delete n h live hash cp b idx h' Hs Hh (Hp k) E Hup) | | |].
  - change (null_count h') with (null_count h). lia.
  - change (unused_count h') with (u32 (unused_count h + 1)). rewrite Hun, u32_small by (unfold is_u32; lia). lia.
  - lia.
Qed.

(** ** A new table *)

(** A table that is filled: [m] properties so far, and nothing was deleted *)
Record filling (n : Z) (h : ecma_property_hashmap_t) (live : Z * bool -> Prop) (hash : Z * bool -> Z) (m : Z) : Prop := mk_filling {
  filling_shape : shaped n h;
  filling_holds : holds n h live hash;
  filling_empties : empties n h = 2 ^ n - m;
  filling_clear : forall i, 0 <= i < 2 ^ n -> item_at h i <> TOMB
}.

Lemma nth_repeat_0 k m : nth k (repeat 0 m) 0 = 0.
Proof. revert k. induction m as [| m IH]; intros [| k]; try reflexivity. apply IH. Qed.

Lemma empty_items n next named i : item_at (empty_table next (2 ^ n) named) i = EMPTY.
Proof.
  unfold item_at, empty_table. cbn [pair_list bits]. rewrite nth_repeat_0. unfold bit_at, ECMA_PROPERTY_HASHMAP_GET_BIT, byte_of. now rewrite nth_repeat_0.
Qed.

Lemma count_all m : count (fun _ => true) m = Z.of_nat m.
Proof. induction m as [| m IH]; [reflexivity |]. cbn [count]. rewrite IH. cbn [Z.b2z]. lia. Qed.

Lemma empty_filling n next named hash : 5 <= n <= 30 -> filling n (empty_table next (2 ^ n) named) (fun _ => False) hash 0.
Proof.
  intros Hn. pose proof (pow_bounds n Hn) as Hpow. constructor.
  - constructor; [exact Hn | reflexivity | |]; unfold empty_table, zlength; cbn [pair_list bits]; rewrite repeat_length; [lia |].
    rewrite Z.shiftr_div_pow2 by lia. change (2 ^ 3) with 8. rewrite Z2Nat.id by (apply Z.div_pos; lia). replace n with (n - 3 + 3) by lia. rewrite Z.pow_add_r by lia. change (2 ^ 3) with 8. rewrite Z.div_mul by lia. lia.
  - constructor; [intros i cp b _ E; rewrite empty_items in E; discriminate | easy | intros i j cp b _ _ E; rewrite empty_items in E; discriminate].
  - unfold empties. rewrite (count_ext (fun _ => true)) by (intros j _; now rewrite empty_items). rewrite count_all. lia.
  - intros i _. now rewrite empty_items.
Qed.

Lemma filling_unused n h live hash m : filling n h live hash m -> unused n h = 2 ^ n - m.
Proof.
  intros [Hs _ He Hc]. rewrite <- He. unfold unused, empties. apply count_ext. intros i Hi. pose proof (pow_bounds n (shape_n _ _ Hs)).
  specialize (Hc i ltac:(lia)). destruct (item_at h i); [reflexivity | easy | reflexivity].
Qed.

Lemma place_entry_spec n h live hash m cp b : filling n h live hash m -> 0 <= m < 2 ^ n -> 0 <= hash (cp, b) -> ~ live (cp, b) -> cp <> ECMA_NULL_POINTER ->
  exists h', place_entry h (hash (cp, b)) cp b = Some h' /\ filling n h' (fun x => x = (cp, b) \/ live x) hash (m + 1) /\ next_of_map h' = next_of_map h
    /\ null_count h' = null_count h /\ unused_count h' = unused_count h.
Proof.
  intros Hf Hm H0 Hnew Hcp. pose proof (filling_unused _ _ _ _ _ Hf) as Hun. destruct Hf as [Hs Hh He Hc]. pose proof (pow_bounds n (shape_n _ _ Hs)) as Hpow.
  destruct (find_null_spec n h Hs (hash (cp, b)) H0 ltac:(lia)) as (k & Hk & Hfree & Hbefore & Hfind). set (idx := probe n (hash (cp, b)) k) in *.
  assert (Hidx : 0 <= idx < 2 ^ n) by (apply probe_range; pose proof (shape_n _ _ Hs); lia).
  assert (Hempty : item_at h idx = EMPTY) by (specialize (Hc idx Hidx); destruct (item_at h idx); [reflexivity | easy | discriminate]).
  unfold place_entry. rewrite Hfind. eexists. split; [reflexivity |].
  set (bits' := if b then ECMA_PROPERTY_HASHMAP_SET_BIT (bits h) idx else bits h).
  assert (Hup : updates n h idx (USED cp b) (mk_hashmap (next_of_map h) (max_property_count h) (null_count h) (unused_count h) (<[Z.to_nat idx := cp]> (pair_list h)) bits')).
  { rewrite <- (item_used cp b Hcp). pose proof (shape_bits _ _ Hs) as Hb. apply update_items; [exact Hs | exact Hidx | unfold bits', ECMA_PROPERTY_HASHMAP_SET_BIT; destruct b; [apply length_insert | reflexivity] |].
    intros i Hi. unfold bits'. destruct b; [rewrite bit_set by lia; rewrite (Z.eqb_sym idx i); now destruct (i =? idx) |].
    destruct (Z.eqb_spec i idx) as [-> | _]; [| reflexivity]. rewrite (empty_or_tomb h idx Hfree), Hempty. reflexivity. }
  assert (Eh : (if b then with_bits (with_entry h idx cp) (ECMA_PROPERTY_HASHMAP_SET_BIT (bits (with_entry h idx cp)) idx) else with_entry h idx cp)
    = mk_hashmap (next_of_map h) (max_property_count h) (null_count h) (unused_count h) (<[Z.to_nat idx := cp]> (pair_list h)) bits') by (unfold bits'; now destruct b).
  rewrite Eh. destruct (updates_counts n h idx (USED cp b) _ Hs Hidx Hup) as [He' _]. rewrite Hempty in He'. cbn [is_empty Z.b2z] in He'.
  splits; try reflexivity. constructor; [apply Hup | exact (holds_insert n h live hash cp b k _ Hs Hh H0 Hnew Hk Hfree Hbefore Hup) | lia |].
  intros i Hi. destruct Hup as (_ & _ & Hu). rewrite Hu by exact Hi. destruct (i =? idx); [discriminate | now apply Hc].
Qed.

(** A third of the table is empty when it is new *)
Lemma filled_ok n h live hash m : filling n h live hash m -> null_count h = 2 ^ n - m -> unused_count h = 2 ^ n - m -> 0 <= m -> m + m / 2 <= 2 ^ n -> table_ok n h live hash.
Proof.
  intros Hf E1 E2 Hm Hroom. pose proof (filling_unused _ _ _ _ _ Hf) as Hun. destruct Hf as [Hs Hh He Hc]. pose proof (pow_bounds n (shape_n _ _ Hs)) as Hpow.
  constructor; [exact Hs | exact Hh | lia | lia |]. rewrite He. Z.div_mod_to_equations; lia.
Qed.

Lemma table_size_loop k : forall n named, 5 <= n -> n + Z.of_nat k = 30 -> 0 <= named -> named + named / 2 <= 2 ^ 30 ->
  exists n', n <= n' <= 30 /\ named + named / 2 <= 2 ^ n' /\ (n' = n \/ 2 ^ n' < 2 * (named + named / 2)) /\ table_size k (2 ^ n) named = Some (2 ^ n').
Proof.
  assert (Ecmp : forall k n named, 5 <= n <= 30 -> 0 <= named -> named + named / 2 <= 2 ^ 30 -> table_size k (2 ^ n) named =
    if 2 ^ n <? named + named / 2 then match k with O => None | S k => table_size k (2 ^ (n + 1)) named end else Some (2 ^ n)).
  { intros j n named Hn H0 Hmax. pose proof (pow_bounds n Hn). change (2 ^ 30) with 1073741824 in Hmax. destruct j; cbn [table_size]; rewrite Z.shiftr_div_pow2 by lia; change (2 ^ 1) with 2;
      rewrite u32_small by (unfold is_u32; Z.div_mod_to_equations; lia); destruct (2 ^ n <? named + named / 2); try reflexivity.
    rewrite Z.shiftl_mul_pow2 by lia. rewrite u32_small by (unfold is_u32; lia). rewrite Z.pow_add_r by lia. reflexivity. }
  induction k as [| k IH]; intros n named Hn Hk H0 Hmax; rewrite Ecmp by lia.
  - assert (n = 30) as -> by lia. destruct (Z.ltb_spec (2 ^ 30) (named + named / 2)); [lia |]. exists 30. splits; (lia || reflexivity).
  - destruct (Z.ltb_spec (2 ^ n) (named + named / 2)); [| exists n; splits; (lia || reflexivity)].
    destruct (IH (n + 1) named ltac:(lia) ltac:(lia) H0 Hmax) as (n' & Hn' & Hle & Hmin & E). exists n'. splits; try (lia || exact E). right. destruct Hmin as [-> | Hmin]; [rewrite Z.pow_add_r by lia; lia | exact Hmin].
Qed.

Lemma table_size_spec named : 0 <= named -> named + named / 2 <= 2 ^ 30 ->
  exists n, 5 <= n <= 30 /\ named + named / 2 <= 2 ^ n /\ (n = 5 \/ 2 ^ n < 2 * (named + named / 2)) /\ table_size 25 ECMA_PROPERTY_HASMAP_MINIMUM_SIZE named = Some (2 ^ n).
Proof. intros H0 Hmax. change ECMA_PROPERTY_HASMAP_MINIMUM_SIZE with (2 ^ 5). apply table_size_loop; lia. Qed.

(** ** The same properties *)

Lemma holds_ext n h live live' hash hash' : holds n h live hash -> (forall x, live' x <-> live x) -> (forall x, live x -> hash' x = hash x) -> holds n h live' hash'.
Proof.
  intros [H1 H2 H3] Hl Hh. constructor; [intros i cp b Hi E; apply Hl, (H1 i); assumption | | exact H3]. intros cp b H. apply Hl in H. rewrite Hh by exact H. now apply H2.
Qed.

Lemma table_ok_ext n h live live' hash hash' : table_ok n h live hash -> (forall x, live' x <-> live x) -> (forall x, live x -> hash' x = hash x) -> table_ok n h live' hash'.
Proof. intros [] Hl Hh. constructor; try assumption. now apply (holds_ext n h live live' hash hash'). Qed.

Lemma filling_ext n h live live' hash hash' m : filling n h live hash m -> (forall x, live' x <-> live x) -> (forall x, live x -> hash' x = hash x) -> filling n h live' hash' m.
Proof. intros [] Hl Hh. constructor; try assumption. now apply (holds_ext n h live live' hash hash'). Qed.
