(* ===== verification/Properties.v ===== *)
(** * Properties of objects: src/jjs-core/ecma/base

    The property list of an object is a chain of pairs of properties, newest first, with a
    hash map in front of it when it is long; a cache of recent lookups is shared by all
    objects.  Here are the functions of ecma-helpers.c that create, find and delete
    properties, those of ecma-property-hashmap.c and ecma-lcache.c, the release of
    properties and the reaction to memory pressure of ecma-gc.c.

    The state has the blocks of property lists by their compressed pointers; pointers to
    properties are the pair and which of its two properties.  References to names and
    values, which other components count, are calls in a log. *)
From Stdlib Require Import ZArith Lia Bool List.
From stdpp Require Import base gmap list.
From S2P Require Import Prelude JmemHeap JmemPointers Values Jmem PropNames PropHashmap.
Import ListNotations.
#[local] Open Scope Z_scope.

(** ** State *)

Record slot := mk_slot { types : Z; names_cp : Z; values : Z }.
Record ecma_property_pair_t := mk_pair { next_property_cp : Z; slot0 : slot; slot1 : slot }.

Definition get_slot (x : ecma_property_pair_t) (second : bool) : slot := if second then slot1 x else slot0 x.
Definition set_slot (x : ecma_property_pair_t) (second : bool) (s : slot) : ecma_property_pair_t :=
  if second then mk_pair (next_property_cp x) (slot0 x) s else mk_pair (next_property_cp x) s (slot1 x).
Definition set_next (x : ecma_property_pair_t) (next_cp : Z) : ecma_property_pair_t := mk_pair next_cp (slot0 x) (slot1 x).
Definition set_types (s : slot) (property : Z) : slot := mk_slot property (names_cp s) (values s).

Inductive cell :=
| PAIR (x : ecma_property_pair_t)
| HASHMAP (h : ecma_property_hashmap_t)
| ACCESSORS (getter_cp setter_cp : Z).

Definition sizeof_ecma_property_pair_t : Z := 24.
Definition sizeof_ecma_getter_setter_pointers_t : Z := 8.

Definition cell_size (c : cell) : Z :=
  match c with
  | PAIR _ => sizeof_ecma_property_pair_t
  | HASHMAP h => ECMA_PROPERTY_HASHMAP_GET_TOTAL_SIZE (max_property_count h)
  | ACCESSORS _ _ => sizeof_ecma_getter_setter_pointers_t
  end.

(** The first type of a header *)
Definition header_type (c : cell) : Z :=
  match c with PAIR x => types (slot0 x) | HASHMAP _ => ECMA_PROPERTY_TYPE_HASHMAP | ACCESSORS _ _ => 0 end.

(** What the property lists rely on in the memory manager: blocks are apart from the ones
    that are held, are given back with the size they were asked for, and all fit in what
    compressed pointers reach.  [alloc_cell] is jmem_cellocator_alloc, [alloc_page] the
    allocation of the region of a page with the initialization of its cells, [over_limit]
    the test of jmem_heap_gc_and_alloc_block, [gc_run] what ecma_gc_run does to blocks that
    are not part of these lists. *)
Class PropertyHeap := {
  prop_heap : Type;
  holding : prop_heap -> gmap Z Z -> Prop;
  over_limit : Z -> prop_heap -> bool;
  alloc_cell : prop_heap -> option (Z * prop_heap);
  alloc_region : Z -> prop_heap -> option (Z * prop_heap);
  alloc_page : prop_heap -> option prop_heap;
  cell_page_size : Z;
  heap_free : Z -> Z -> prop_heap -> option prop_heap;
  gc_run : prop_heap -> prop_heap;
  low_pressure_runs : prop_heap -> bool;
  cell_holding : forall h live n p h', holding h live -> 0 < n <= JMEM_CELLOCATOR_CELL_SIZE -> alloc_cell h = Some (p, h') -> holding h' (<[p := n]> live) /\ live !! p = None /\ 0 < p < 536870912;
  region_holding : forall h live n p h', holding h live -> JMEM_CELLOCATOR_CELL_SIZE < n -> alloc_region n h = Some (p, h') -> holding h' (<[p := n]> live) /\ live !! p = None /\ 0 < p < 536870912;
  page_holding : forall h live h', holding h live -> alloc_page h = Some h' -> holding h' live;
  free_holding : forall h live p n, holding h live -> live !! p = Some n -> exists h', heap_free p n h = Some h' /\ holding h' (delete p live);
  gc_holding : forall h live, holding h live -> holding (gc_run h) live;
  holding_room : forall h live n blocks, holding h live -> 0 < n -> NoDup blocks -> Forall (fun p => live !! p = Some n) blocks -> n * zlength blocks <= 8 * 536870912
}.

(** Calls to other components *)
Inductive event :=
| REF_NAME (name_p : Z) (** ecma_ref_ecma_string *)
| DEREF_NAME (name_p : Z) (** ecma_deref_ecma_string *)
| FREE_VALUE (value : Z) (** ecma_free_value_if_not_object *)
| FREE_INTERNAL (property name_cp value : Z). (** the internal data of an object *)

Record ecma_lcache_hash_entry_t := mk_entry { prop_p : Z * bool; id : Z }.

(** [swept]: an ordinary object or declarative environment and no fast array, whose hash
    map is released under pressure *)
Record ecma_object_t := mk_object { property_list_cp : Z; swept : bool }.

Section Code.
Context {PN : PropertyNames} {PH : PropertyHeap}.

Record pworld := mk_pworld {
  cells : gmap Z cell;
  objects : gmap Z ecma_object_t;
  lcache : list (list ecma_lcache_hash_entry_t);
  ecma_prop_hashmap_alloc_state : Z;
  ECMA_STATUS_HIGH_PRESSURE_GC : bool;
  heap : prop_heap;
  log : list event
}.

Inductive presult (A : Type) :=
| PDONE (a : A) (w : pworld)
| PFATAL (** jjs_fatal *)
| PFAULT. (** the code follows or releases what is not there *)
Arguments PDONE {A} _ _.
Arguments PFATAL {A}.
Arguments PFAULT {A}.

Definition P (A : Type) : Type := pworld -> presult A.
#[export] Instance P_ret : MRet P := fun A a w => PDONE a w.
#[export] Instance P_bind : MBind P := fun A B f m w => match m w with PDONE a w' => f a w' | PFATAL => PFATAL | PFAULT => PFAULT end.

Definition pfault {A} : P A := fun _ => PFAULT.
Definition pfatal {A} : P A := fun _ => PFATAL.
Definition get_world : P pworld := fun w => PDONE w w.
Definition set_cells (c : gmap Z cell) (w : pworld) : pworld := mk_pworld c (objects w) (lcache w) (ecma_prop_hashmap_alloc_state w) (ECMA_STATUS_HIGH_PRESSURE_GC w) (heap w) (log w).
Definition set_objects (o : gmap Z ecma_object_t) (w : pworld) : pworld := mk_pworld (cells w) o (lcache w) (ecma_prop_hashmap_alloc_state w) (ECMA_STATUS_HIGH_PRESSURE_GC w) (heap w) (log w).
Definition set_lcache (l : list (list ecma_lcache_hash_entry_t)) (w : pworld) : pworld := mk_pworld (cells w) (objects w) l (ecma_prop_hashmap_alloc_state w) (ECMA_STATUS_HIGH_PRESSURE_GC w) (heap w) (log w).
Definition set_alloc_state (s : Z) (f : bool) (w : pworld) : pworld := mk_pworld (cells w) (objects w) (lcache w) s f (heap w) (log w).
Definition set_heap (h : prop_heap) (w : pworld) : pworld := mk_pworld (cells w) (objects w) (lcache w) (ecma_prop_hashmap_alloc_state w) (ECMA_STATUS_HIGH_PRESSURE_GC w) h (log w).
Definition modify (f : pworld -> pworld) : P unit := fun w => PDONE tt (f w).
Definition call (e : event) : P unit := fun w =>
  PDONE tt (mk_pworld (cells w) (objects w) (lcache w) (ecma_prop_hashmap_alloc_state w) (ECMA_STATUS_HIGH_PRESSURE_GC w) (heap w) (log w ++ [e])).
Definition from_option {A} (o : option A) : P A := match o with Some a => mret a | None => pfault end.

Definition get_cell (cp : Z) : P cell := fun w => match cells w !! cp with Some c => PDONE c w | None => PFAULT end.
Definition get_pair (cp : Z) : P ecma_property_pair_t := fun w => match cells w !! cp with Some (PAIR x) => PDONE x w | _ => PFAULT end.
Definition get_hashmap (cp : Z) : P ecma_property_hashmap_t := fun w => match cells w !! cp with Some (HASHMAP h) => PDONE h w | _ => PFAULT end.
(** Stores keep the kind of a block *)
Definition put_pair (cp : Z) (x : ecma_property_pair_t) : P unit := fun w => match cells w !! cp with Some (PAIR _) => PDONE tt (set_cells (<[cp := PAIR x]> (cells w)) w) | _ => PFAULT end.
Definition put_hashmap (cp : Z) (x : ecma_property_hashmap_t) : P unit := fun w => match cells w !! cp with Some (HASHMAP _) => PDONE tt (set_cells (<[cp := HASHMAP x]> (cells w)) w) | _ => PFAULT end.
Definition get_property (p : Z * bool) : P slot := x ← get_pair p.1; mret (get_slot x p.2).
Definition put_property (p : Z * bool) (s : slot) : P unit := x ← get_pair p.1; put_pair p.1 (set_slot x p.2 s).
Definition get_list (object_cp : Z) : P Z := fun w => match objects w !! object_cp with Some o => PDONE (property_list_cp o) w | None => PFAULT end.
Definition put_list (object_cp cp : Z) : P unit := fun w => match objects w !! object_cp with Some o => PDONE tt (set_objects (<[object_cp := mk_object cp (swept o)]> (objects w)) w) | None => PFAULT end.

(** The bound of the walks over a list *)
Definition list_fuel : P nat := fun w => PDONE (S (size (cells w))) w.

(** ** Memory *)

Definition ECMA_PROP_HASHMAP_ALLOC_ON : Z := 0.
Definition ECMA_PROP_HASHMAP_ALLOC_MAX : Z := 4.

Definition jmem_heap_free_block (cp size : Z) : P unit := fun w =>
  match heap_free cp size (heap w) with Some h => PDONE tt (set_cells (delete cp (cells w)) (set_heap h w)) | None => PFAULT end.

(** The object must have a property hashmap *)
Definition ecma_property_hashmap_free (object_cp : Z) : P unit :=
  property_p ← get_list object_cp;
  h ← get_hashmap property_p;
  put_list object_cp (next_of_map h);;
  jmem_heap_free_block property_p (ECMA_PROPERTY_HASHMAP_GET_TOTAL_SIZE (max_property_count h)).

Fixpoint free_hashmaps (l : list (Z * ecma_object_t)) : P unit :=
  match l with
  | [] => mret tt
  | (obj_iter_cp, o) :: l =>
      (if swept o then
         prop_iter_cp ← get_list obj_iter_cp;
         if negb (prop_iter_cp =? JMEM_CP_NULL) then
           c ← get_cell prop_iter_cp;
           if header_type c =? ECMA_PROPERTY_TYPE_HASHMAP then ecma_property_hashmap_free obj_iter_cp else mret tt
         else mret tt
       else mret tt);;
      free_hashmaps l
  end.

Definition ecma_free_unused_memory (pressure : jmem_pressure_t) : P unit :=
  match pressure with
  | JMEM_PRESSURE_LOW =>
      w ← get_world;
      let s := ecma_prop_hashmap_alloc_state w in
      modify (set_alloc_state (if ECMA_PROP_HASHMAP_ALLOC_ON <? s then s - 1 else s) false);;
      if low_pressure_runs (heap w) then modify (fun w => set_heap (gc_run (heap w)) w) else mret tt
  | JMEM_PRESSURE_HIGH =>
      w ← get_world;
      let s := ecma_prop_hashmap_alloc_state w in
      (if ECMA_STATUS_HIGH_PRESSURE_GC w then modify (set_alloc_state ECMA_PROP_HASHMAP_ALLOC_MAX true)
       else if s <? ECMA_PROP_HASHMAP_ALLOC_MAX then modify (set_alloc_state (s + 1) true)
       else mret tt);;
      modify (fun w => set_heap (gc_run (heap w)) w);;
      w ← get_world;
      free_hashmaps (map_to_list (objects w))
  | JMEM_PRESSURE_FULL => pfatal
  | JMEM_PRESSURE_NONE => pfault
  end.

Fixpoint pressure_loop {A} (fuel : nat) (alloc : P (option A)) (pressure max_pressure : jmem_pressure_t) (data_space_p : option A) : P (option A) :=
  match data_space_p with
  | Some _ => mret data_space_p
  | None =>
      if pressure_level pressure <? pressure_level max_pressure then
        match fuel with
        | O => pfault
        | S fuel =>
            let pressure := next_pressure pressure in
            ecma_free_unused_memory pressure;;
            data_space_p ← alloc;
            pressure_loop fuel alloc pressure max_pressure data_space_p
        end
      else mret None
  end.

Definition gc_and_alloc {A} (size : Z) (alloc : P (option A)) (max_pressure : jmem_pressure_t) : P (option A) :=
  w ← get_world;
  pressure ← (if over_limit size (heap w) then ecma_free_unused_memory JMEM_PRESSURE_LOW;; mret JMEM_PRESSURE_LOW else mret JMEM_PRESSURE_NONE);
  data_space_p ← alloc;
  pressure_loop 3 alloc pressure max_pressure data_space_p.

(** A block with its content *)
Definition take_block (alloc : prop_heap -> option (Z * prop_heap)) (c : cell) : P (option Z) := fun w =>
  match alloc (heap w) with
  | Some (cp, h) => PDONE (Some cp) (set_cells (<[cp := c]> (cells w)) (set_heap h w))
  | None => PDONE None w
  end.

Definition take_page : P (option unit) := fun w => match alloc_page (heap w) with Some h => PDONE (Some tt) (set_heap h w) | None => PDONE None w end.
Definition jmem_cellocator_add_page : P (option unit) := gc_and_alloc cell_page_size take_page JMEM_PRESSURE_HIGH.

(** Small blocks are cells, and pages of cells may be added under pressure *)
Definition jmem_heap_alloc (c : cell) : P (option Z) :=
  if jmem_align (cell_size c) <=? JMEM_CELLOCATOR_CELL_SIZE then
    chunk_p ← take_block alloc_cell c;
    match chunk_p with
    | Some _ => mret chunk_p
    | None =>
        ecma_free_unused_memory JMEM_PRESSURE_LOW;;
        chunk_p ← take_block alloc_cell c;
        match chunk_p with
        | Some _ => mret chunk_p
        | None =>
            added ← jmem_cellocator_add_page;
            match added with Some _ => take_block alloc_cell c | None => mret None end
        end
    end
  else take_block (alloc_region (cell_size c)) c.

Definition jmem_heap_gc_and_alloc_block (c : cell) (max_pressure : jmem_pressure_t) : P (option Z) := gc_and_alloc (cell_size c) (jmem_heap_alloc c) max_pressure.
Definition jmem_heap_alloc_block (c : cell) : P Z :=
  data_space_p ← jmem_heap_gc_and_alloc_block c JMEM_PRESSURE_FULL;
  match data_space_p with Some cp => mret cp | None => pfault end.
Definition jmem_heap_alloc_block_null_on_error (c : cell) : P (option Z) := jmem_heap_gc_and_alloc_block c JMEM_PRESSURE_HIGH.

(** ** The lookup cache *)

Definition ECMA_LCACHE_HASH_ROWS_COUNT : Z := 128.
Definition ECMA_LCACHE_HASH_ROW_LENGTH : Z := 2.
Definition ECMA_LCACHE_HASH_BITSHIFT_INDEX : Z := 2 * JMEM_ALIGNMENT_LOG.
Definition ECMA_LCACHE_HASH_MASK : Z := Z.shiftl (ECMA_LCACHE_HASH_ROWS_COUNT - 1) ECMA_LCACHE_HASH_BITSHIFT_INDEX.
Definition ECMA_LCACHE_HASH_ENTRY_ID_SHIFT : Z := 8 * 4.
Definition ECMA_LCACHE_CREATE_ID (object_cp name_cp : Z) : Z := Z.lor (u64 (Z.shiftl object_cp ECMA_LCACHE_HASH_ENTRY_ID_SHIFT)) name_cp.

Definition ecma_lcache_row_index (object_cp name_cp : Z) : Z :=
  Z.shiftr (Z.land (Z.lxor name_cp object_cp) ECMA_LCACHE_HASH_MASK) ECMA_LCACHE_HASH_BITSHIFT_INDEX.

Definition get_row (row_index : Z) : P (list ecma_lcache_hash_entry_t) := fun w => match lcache w !! Z.to_nat row_index with Some row => PDONE row w | None => PFAULT end.
Definition put_row (row_index : Z) (row : list ecma_lcache_hash_entry_t) : P unit := modify (fun w => set_lcache (<[Z.to_nat row_index := row]> (lcache w)) w).

(** The property is not registered any more; the caller clears the identifier *)
Definition ecma_lcache_invalidate_entry (e : ecma_lcache_hash_entry_t) : P ecma_lcache_hash_entry_t :=
  s ← get_property (prop_p e);
  put_property (prop_p e) (set_types s (ecma_set_property_lcached (types s) false));;
  mret (mk_entry (prop_p e) 0).

(** The first entry that is free gets the property; without one, the last entry is
    invalidated and the others are shifted *)
Fixpoint take_free (row : list ecma_lcache_hash_entry_t) (e : ecma_lcache_hash_entry_t) : option (list ecma_lcache_hash_entry_t) :=
  match row with
  | [] => None
  | x :: row => if id x =? 0 then Some (e :: row) else option_map (cons x) (take_free row e)
  end.

Definition ecma_lcache_insert (object_cp name_cp : Z) (property_p : Z * bool) : P unit :=
  let row_index := ecma_lcache_row_index object_cp name_cp in
  row ← get_row row_index;
  let e := mk_entry property_p (ECMA_LCACHE_CREATE_ID object_cp name_cp) in
  (match take_free row e with
   | Some row => put_row row_index row
   | None =>
       match last row with
       | None => pfault
       | Some last_entry => _ ← ecma_lcache_invalidate_entry last_entry; put_row row_index (e :: removelast row)
       end
   end);;
  s ← get_property property_p;
  put_property property_p (set_types s (ecma_set_property_lcached (types s) true)).

Fixpoint lookup_row (row : list ecma_lcache_hash_entry_t) (entry_id prop_name_type : Z) : P (option (Z * bool)) :=
  match row with
  | [] => mret None
  | e :: row =>
      if id e =? entry_id then
        s ← get_property (prop_p e);
        if ECMA_PROPERTY_GET_NAME_TYPE (types s) =? prop_name_type then mret (Some (prop_p e)) else lookup_row row entry_id prop_name_type
      else lookup_row row entry_id prop_name_type
  end.

Definition ecma_lcache_lookup (object_cp prop_name_p : Z) : P (option (Z * bool)) :=
  let '(prop_name_type, prop_name_cp) :=
    if ECMA_IS_DIRECT_STRING prop_name_p then (ECMA_GET_DIRECT_STRING_TYPE prop_name_p, u32 (ECMA_GET_DIRECT_STRING_VALUE prop_name_p))
    else (ECMA_DIRECT_STRING_PTR, jmem_compress_pointer 32 prop_name_p) in
  row ← get_row (ecma_lcache_row_index object_cp prop_name_cp);
  lookup_row row (ECMA_LCACHE_CREATE_ID object_cp prop_name_cp) prop_name_type.

(** The entry of the property, which must be present *)
Fixpoint invalidate_in (row : list ecma_lcache_hash_entry_t) (property_p : Z * bool) : P (list ecma_lcache_hash_entry_t) :=
  match row with
  | [] => pfault
  | e :: row =>
      if negb (id e =? 0) && bool_decide (prop_p e = property_p) then e ← ecma_lcache_invalidate_entry e; mret (e :: row)
      else row ← invalidate_in row property_p; mret (e :: row)
  end.

Definition ecma_lcache_invalidate (object_cp name_cp : Z) (property_p : Z * bool) : P unit :=
  let row_index := ecma_lcache_row_index object_cp name_cp in
  row ← get_row row_index;
  row ← invalidate_in row property_p;
  put_row row_index row.

(** ** The hash map of an object *)

(** Named properties of a list *)
Fixpoint count_named (fuel : nat) (prop_iter_cp named_property_count : Z) : P Z :=
  if prop_iter_cp =? JMEM_CP_NULL then mret named_property_count
  else
    match fuel with
    | O => pfault
    | S fuel =>
        x ← get_pair prop_iter_cp;
        let one s := if negb (types s =? ECMA_PROPERTY_TYPE_DELETED) then 1 else 0 in
        count_named fuel (next_property_cp x) (u32 (named_property_count + one (slot0 x) + one (slot1 x)))
    end.

Definition place_property (h : ecma_property_hashmap_t) (cp : Z) (second : bool) (s : slot) : P ecma_property_hashmap_t :=
  if types s =? ECMA_PROPERTY_TYPE_DELETED then mret h
  else from_option (place_entry h (ecma_string_get_property_name_hash (types s) (names_cp s)) cp second).

Fixpoint fill_hashmap (fuel : nat) (prop_iter_cp : Z) (h : ecma_property_hashmap_t) : P ecma_property_hashmap_t :=
  if prop_iter_cp =? JMEM_CP_NULL then mret h
  else
    match fuel with
    | O => pfault
    | S fuel =>
        x ← get_pair prop_iter_cp;
        h ← place_property h prop_iter_cp false (slot0 x);
        h ← place_property h prop_iter_cp true (slot1 x);
        fill_hashmap fuel (next_property_cp x) h
    end.

(** The object must not have a property hashmap *)
Definition ecma_property_hashmap_create (object_cp : Z) : P unit :=
  w ← get_world;
  if negb (ecma_prop_hashmap_alloc_state w =? ECMA_PROP_HASHMAP_ALLOC_ON) then mret tt
  else
    prop_iter_cp ← get_list object_cp;
    if prop_iter_cp =? JMEM_CP_NULL then mret tt
    else
      fuel ← list_fuel;
      named_property_count ← count_named fuel prop_iter_cp 0;
      if named_property_count <? ECMA_PROPERTY_HASMAP_MINIMUM_SIZE / 2 then mret tt
      else
        max_property_count ← from_option (table_size 25 ECMA_PROPERTY_HASMAP_MINIMUM_SIZE named_property_count);
        hashmap_p ← jmem_heap_alloc_block_null_on_error (HASHMAP (empty_table JMEM_CP_NULL max_property_count named_property_count));
        match hashmap_p with
        | None => mret tt
        | Some hashmap_cp =>
            prop_iter_cp ← get_list object_cp;
            put_list object_cp hashmap_cp;;
            fuel ← list_fuel;
            h ← fill_hashmap fuel prop_iter_cp (empty_table prop_iter_cp max_property_count named_property_count);
            put_hashmap hashmap_cp h
        end.

(** The object must have one *)
Definition ecma_property_hashmap_insert (object_cp name_p property_pair_cp : Z) (second : bool) : P unit :=
  hashmap_cp ← get_list object_cp;
  h ← get_hashmap hashmap_cp;
  if null_count h <? Z.shiftr (max_property_count h) 3 then
    ecma_property_hashmap_free object_cp;;
    ecma_property_hashmap_create object_cp
  else
    h ← from_option (insert_entry h (ecma_string_hash name_p) property_pair_cp second);
    put_hashmap hashmap_cp h.

Definition ecma_property_hashmap_delete (object_cp name_cp : Z) (property_p : Z * bool) : P ecma_property_hashmap_delete_status :=
  hashmap_cp ← get_list object_cp;
  h ← get_hashmap hashmap_cp;
  s ← get_property property_p;
  r ← from_option (delete_entry h (ecma_string_get_property_name_hash (types s) name_cp) property_p.1 property_p.2);
  put_hashmap hashmap_cp r.1;;
  mret r.2.

(** The tests in the two loops of ecma_property_hashmap_find and ecma_find_named_property *)
Definition slot_matches (name_p : Z) (s : slot) : bool :=
  if ECMA_IS_DIRECT_STRING name_p then
    (names_cp s =? u32 (ECMA_GET_DIRECT_STRING_VALUE name_p)) && (ECMA_PROPERTY_GET_NAME_TYPE (types s) =? ECMA_GET_DIRECT_STRING_TYPE name_p)
  else (ECMA_PROPERTY_GET_NAME_TYPE (types s) =? ECMA_DIRECT_STRING_PTR) && names_equal (jmem_decompress_pointer (names_cp s)) name_p.

Definition property_matches (w : pworld) (name_p cp : Z) (second : bool) : option bool :=
  match cells w !! cp with Some (PAIR x) => Some (slot_matches name_p (get_slot x second)) | _ => None end.

Definition ecma_property_hashmap_find (h : ecma_property_hashmap_t) (name_p : Z) : P (option (Z * bool)) :=
  w ← get_world;
  from_option (find_entry (property_matches w name_p) h (ecma_string_hash name_p)).

(** ** Properties *)

Definition ref_name (name_p : Z) : P unit := if ECMA_IS_DIRECT_STRING name_p then mret tt else call (REF_NAME name_p).

(** The first cell of a list, and its second when the first is a hash map *)
Definition has_hashmap (list_cp : Z) : P bool := c ← get_cell list_cp; mret (header_type c =? ECMA_PROPERTY_TYPE_HASHMAP).

Definition new_pair : ecma_property_pair_t := mk_pair JMEM_CP_NULL (mk_slot ECMA_PROPERTY_TYPE_DELETED LIT_INTERNAL_MAGIC_STRING_DELETED 0) (mk_slot ECMA_PROPERTY_TYPE_DELETED LIT_INTERNAL_MAGIC_STRING_DELETED 0).

(** A new pair in front of the list, and its second property *)
Definition create_in_new_pair (object_cp name_p type_and_flags value : Z) : P (Z * bool) :=
  pair_cp ← jmem_heap_alloc_block (PAIR new_pair);
  list_cp ← get_list object_cp;
  with_hashmap ← (if list_cp =? ECMA_NULL_POINTER then mret false else has_hashmap list_cp);
  let '(name_cp, name_type) := ecma_string_to_property_name name_p in
  ref_name name_p;;
  let s := mk_slot (u8 (Z.lor type_and_flags name_type)) name_cp value in
  let deleted := mk_slot ECMA_PROPERTY_TYPE_DELETED LIT_INTERNAL_MAGIC_STRING_DELETED 0 in
  if with_hashmap : bool then
    h ← get_hashmap list_cp;
    put_pair pair_cp (mk_pair (next_of_map h) deleted s);;
    put_hashmap list_cp (mk_hashmap pair_cp (max_property_count h) (null_count h) (unused_count h) (pair_list h) (bits h));;
    ecma_property_hashmap_insert object_cp name_p pair_cp true;;
    mret (pair_cp, true)
  else
    put_pair pair_cp (mk_pair list_cp deleted s);;
    put_list object_cp pair_cp;;
    mret (pair_cp, true).

(** The result is the property, whose value the C function returns *)
Definition ecma_create_property (object_cp name_p type_and_flags value : Z) : P (Z * bool) :=
  list_cp ← get_list object_cp;
  if list_cp =? ECMA_NULL_POINTER then create_in_new_pair object_cp name_p type_and_flags value
  else
    with_hashmap ← has_hashmap list_cp;
    first_cp ← (if with_hashmap : bool then h ← get_hashmap list_cp; mret (next_of_map h) else mret list_cp);
    x ← get_pair first_cp;
    if types (slot0 x) =? ECMA_PROPERTY_TYPE_DELETED then
      let '(name_cp, name_type) := ecma_string_to_property_name name_p in
      ref_name name_p;;
      put_pair first_cp (set_slot x false (mk_slot (u8 (Z.lor type_and_flags name_type)) name_cp value));;
      (if with_hashmap : bool then ecma_property_hashmap_insert object_cp name_p first_cp false else mret tt);;
      mret (first_cp, false)
    else create_in_new_pair object_cp name_p type_and_flags value.

Definition ecma_create_named_data_property (object_cp name_p prop_attributes : Z) : P (Z * bool) :=
  ecma_create_property object_cp name_p (Z.lor ECMA_PROPERTY_FLAG_DATA prop_attributes) ECMA_VALUE_UNDEFINED.

(** The getter and the setter are compressed pointers *)
Definition ecma_create_named_accessor_property (object_cp name_p getter_cp setter_cp prop_attributes : Z) : P (Z * bool) :=
  getter_setter_pair_cp ← jmem_heap_alloc_block (ACCESSORS getter_cp setter_cp);
  ecma_create_property object_cp name_p prop_attributes getter_setter_pair_cp.

Definition ecma_create_named_reference_property (object_cp name_p reference : Z) : P (Z * bool) :=
  ecma_create_property object_cp name_p ECMA_PROPERTY_CONFIGURABLE_ENUMERABLE reference.

(** The walk over the list: the property and the number of pairs passed *)
Fixpoint find_in_list (fuel : nat) (prop_iter_cp name_p steps : Z) : P (option (Z * bool) * Z) :=
  if prop_iter_cp =? JMEM_CP_NULL then mret (None, steps)
  else
    match fuel with
    | O => pfault
    | S fuel =>
        x ← get_pair prop_iter_cp;
        if slot_matches name_p (slot0 x) then mret (Some (prop_iter_cp, false), steps)
        else if slot_matches name_p (slot1 x) then mret (Some (prop_iter_cp, true), steps)
        else find_in_list fuel (next_property_cp x) name_p (u32 (steps + 1))
    end.

(** A property that is found and not registered yet goes to the cache, with its own name *)
Definition register (object_cp : Z) (property_p : option (Z * bool)) : P unit :=
  match property_p with
  | None => mret tt
  | Some property_p =>
      s ← get_property property_p;
      if ecma_is_property_lcached (types s) then mret tt else ecma_lcache_insert object_cp (names_cp s) property_p
  end.

Definition ecma_find_named_property (object_cp name_p : Z) : P (option (Z * bool)) :=
  property_p ← ecma_lcache_lookup object_cp name_p;
  match property_p with
  | Some _ => mret property_p
  | None =>
      prop_iter_cp ← get_list object_cp;
      with_hashmap ← (if prop_iter_cp =? JMEM_CP_NULL then mret false else has_hashmap prop_iter_cp);
      if with_hashmap : bool then
        h ← get_hashmap prop_iter_cp;
        property_p ← ecma_property_hashmap_find h name_p;
        register object_cp property_p;;
        mret property_p
      else
        fuel ← list_fuel;
        r ← find_in_list fuel prop_iter_cp name_p 0;
        (if ECMA_PROPERTY_HASMAP_MINIMUM_SIZE / 2 <=? r.2 then ecma_property_hashmap_create object_cp else mret tt);;
        register object_cp r.1;;
        mret r.1
  end.

(** ** Release *)

Definition ECMA_GC_FREE_REFERENCES : bool := true.

(** [free_references] is the option of that name: the values of accessors are references.
    The internal data of objects belong to other components. *)
Definition ecma_gc_free_property (object_cp : Z) (property_p : Z * bool) (free_references : bool) : P unit :=
  s ← get_property property_p;
  let property := types s in
  (if ecma_is_property_lcached property then ecma_lcache_invalidate object_cp (names_cp s) property_p else mret tt);;
  if ECMA_PROPERTY_IS_RAW property then
    (if ECMA_PROPERTY_GET_NAME_TYPE property =? ECMA_DIRECT_STRING_PTR then call (DEREF_NAME (jmem_decompress_pointer (names_cp s))) else mret tt);;
    if flag_set property ECMA_PROPERTY_FLAG_DATA then call (FREE_VALUE (values s))
    else if free_references then mret tt
    else jmem_heap_free_block (values s) sizeof_ecma_getter_setter_pointers_t
  else if property =? ECMA_PROPERTY_TYPE_DELETED then mret tt
  else call (FREE_INTERNAL property (names_cp s) (values s)).

(** The walk of ecma_delete_property: the cell in front of the pair, if any *)
Fixpoint find_previous (fuel : nat) (prev_prop_cp : option Z) (cur_prop_cp pair_cp : Z) : P (option (option Z)) :=
  if cur_prop_cp =? JMEM_CP_NULL then mret None
  else if cur_prop_cp =? pair_cp then mret (Some prev_prop_cp)
  else
    match fuel with
    | O => pfault
    | S fuel => x ← get_pair cur_prop_cp; find_previous fuel (Some cur_prop_cp) (next_property_cp x) pair_cp
    end.

Definition unlink_pair (object_cp : Z) (prev_prop_cp : option Z) (next_cp : Z) : P unit :=
  match prev_prop_cp with
  | None => put_list object_cp next_cp
  | Some prev_cp =>
      c ← get_cell prev_cp;
      match c with
      | PAIR x => put_pair prev_cp (set_next x next_cp)
      | HASHMAP h => put_hashmap prev_cp (mk_hashmap next_cp (max_property_count h) (null_count h) (unused_count h) (pair_list h) (bits h))
      | ACCESSORS _ _ => pfault
      end
  end.

Definition recreate (object_cp : Z) (hashmap_status : ecma_property_hashmap_delete_status) : P unit :=
  match hashmap_status with
  | ECMA_PROPERTY_HASHMAP_DELETE_RECREATE_HASHMAP => ecma_property_hashmap_free object_cp;; ecma_property_hashmap_create object_cp
  | _ => mret tt
  end.

(** The property is given by the address of its value *)
Definition ecma_delete_property (object_cp : Z) (property_p : Z * bool) : P unit :=
  list_cp ← get_list object_cp;
  with_hashmap ← (if list_cp =? JMEM_CP_NULL then mret false else has_hashmap list_cp);
  start ← (if with_hashmap : bool then h ← get_hashmap list_cp; mret (Some list_cp, next_of_map h) else mret (None, list_cp));
  fuel ← list_fuel;
  found ← find_previous fuel start.1 start.2 property_p.1;
  match found with
  | None => mret tt
  | Some prev_prop_cp =>
      s ← get_property property_p;
      hashmap_status ← (if with_hashmap : bool then ecma_property_hashmap_delete object_cp (names_cp s) property_p else mret ECMA_PROPERTY_HASHMAP_DELETE_NO_HASHMAP);
      ecma_gc_free_property object_cp property_p false;;
      s ← get_property property_p;
      put_property property_p (mk_slot ECMA_PROPERTY_TYPE_DELETED LIT_INTERNAL_MAGIC_STRING_DELETED (values s));;
      x ← get_pair property_p.1;
      if negb (types (get_slot x (negb property_p.2)) =? ECMA_PROPERTY_TYPE_DELETED) then recreate object_cp hashmap_status
      else
        unlink_pair object_cp prev_prop_cp (next_property_cp x);;
        jmem_heap_free_block property_p.1 sizeof_ecma_property_pair_t;;
        recreate object_cp hashmap_status
  end.

Fixpoint gc_free_list (fuel : nat) (object_cp prop_iter_cp : Z) (free_references : bool) : P unit :=
  if prop_iter_cp =? JMEM_CP_NULL then mret tt
  else
    match fuel with
    | O => pfault
    | S fuel =>
        x ← get_pair prop_iter_cp;
        ecma_gc_free_property object_cp (prop_iter_cp, false) free_references;;
        ecma_gc_free_property object_cp (prop_iter_cp, true) free_references;;
        jmem_heap_free_block prop_iter_cp sizeof_ecma_property_pair_t;;
        gc_free_list fuel object_cp (next_property_cp x) free_references
    end.

(** The object is released afterwards, and its list with it *)
Definition ecma_gc_free_properties (object_cp : Z) (free_references : bool) : P unit :=
  prop_iter_cp ← get_list object_cp;
  with_hashmap ← (if prop_iter_cp =? JMEM_CP_NULL then mret false else has_hashmap prop_iter_cp);
  (if with_hashmap : bool then ecma_property_hashmap_free object_cp else mret tt);;
  prop_iter_cp ← get_list object_cp;
  fuel ← list_fuel;
  gc_free_list fuel object_cp prop_iter_cp free_references.
End Code.
