(* ===== verification/PropState.v ===== *)
(** * The state of property lists

    What the lists of Properties.v stand for: [rep] ties a state to the chains of pairs
    of the objects, each property by its name, flags and value, whatever the hash maps,
    the lookup cache and its marks are. *)
From Stdlib Require Import ZArith Lia Bool List.
From stdpp Require Import base gmap list.
From S2P Require Import Prelude JmemPointers Values Jmem PropNames PropHashmap PropProbing Properties.
Import ListNotations.
#[local] Open Scope Z_scope.

(** ** Chains *)

(** A property; the mark of the lookup cache is not part of its flags *)
Record prop := mk_prop { p_name : Z; p_flags : Z; p_value : Z }.
Abbreviation aslot := (option prop).
Abbreviation apair := (aslot * aslot)%type.
Abbreviation chain := (list (Z * apair)).

Definition aget (x : apair) (second : bool) : aslot := if second then x.2 else x.1.
Definition aset (x : apair) (second : bool) (a : aslot) : apair := if second then (x.1, a) else (a, x.2).

Fixpoint pair_in (l : chain) (cp : Z) : option apair :=
  match l with [] => None | (p, x) :: l => if cp =? p then Some x else pair_in l cp end.
Definition prop_at (l : chain) (q : Z * bool) : option prop := match pair_in l q.1 with Some x => aget x q.2 | None => None end.

Definition put (l : chain) (cp : Z) (a : apair) : chain := map (fun c => if c.1 =? cp then (cp, a) else c) l.

Definition props_of (x : apair) : list prop := option_list x.1 ++ option_list x.2.
(** The properties of a chain, the newest first *)
Definition contents (l : chain) : list prop := concat (map (fun c => props_of c.2) l).

Definition cps (l : chain) : list Z := map fst l.

(** Properties that are not data have a getter and a setter in a cell of their own, but in
    the objects whose values are references *)
Definition is_accessor (p : prop) : bool := p_flags p <? ECMA_PROPERTY_FLAG_DATA.
Definition accs (references : bool) (l : chain) : list Z := if references then [] else map p_value (List.filter is_accessor (contents l)).

(** What the hash maps have, by the object *)
Abbreviation maps := (Z -> ecma_property_hashmap_t -> chain -> Prop).
Abbreviation lists := (gmap Z (option Z * chain)).

Section Theory.
Context {PN : PropertyNames} {PH : PropertyHeap} (refs : Z -> bool).

(** The cells of a list: its hash map, its pairs and its accessors *)
Definition cells_of (o : Z) (g : option Z * chain) : list Z := option_list g.1 ++ cps g.2 ++ accs (refs o) g.2.

(** The name of a property and its flags; internal properties are data *)
Definition prop_ok (p : prop) : Prop :=
  is_name (p_name p) /\ 0 <= p_flags p < 64 /\ p_flags p mod 32 < 16 /\ (name_type (p_name p) = ECMA_DIRECT_STRING_SPECIAL -> 32 <= p_flags p).
Definition key (p : prop) : option name_key := key_of (p_name p).
Definition prop_hash (p : prop) : Z := ecma_string_hash (p_name p).

Definition mark (cached : bool) : Z := if cached then ECMA_PROPERTY_FLAG_LCACHED else 0.

(** A property in memory, with its mark *)
Definition slot_is (s : slot) (a : aslot) : Prop :=
  match a with
  | None => types s = ECMA_PROPERTY_TYPE_DELETED /\ names_cp s = LIT_INTERNAL_MAGIC_STRING_DELETED
  | Some p => names_cp s = name_value (p_name p) /\ values s = p_value p /\ exists cached, types s = p_flags p + mark cached + 64 * name_type (p_name p)
  end.

Definition pair_is (x : ecma_property_pair_t) (a : apair) : Prop := slot_is (slot0 x) a.1 /\ slot_is (slot1 x) a.2.

Fixpoint linked (m : gmap Z cell) (cp : Z) (l : chain) : Prop :=
  match l with
  | [] => cp = JMEM_CP_NULL
  | (p, a) :: l => cp = p /\ p <> JMEM_CP_NULL /\ exists x, m !! p = Some (PAIR x) /\ pair_is x a /\ linked m (next_property_cp x) l
  end.

Definition in_use (l : chain) (q : Z * bool) : Prop := exists p, prop_at l q = Some p.
Definition slot_hash (l : chain) (q : Z * bool) : Z := match prop_at l q with Some p => prop_hash p | None => 0 end.

(** The hash map has the properties of the chain; it is not nearly empty *)
Definition map_is (h : ecma_property_hashmap_t) (l : chain) : Prop :=
  exists n, table_ok n h (in_use l) (slot_hash l) /\ 4 * unused n h <= 3 * 2 ^ n.

Definition accs_in (m : gmap Z cell) (l : list Z) : Prop := Forall (fun a => exists getter_cp setter_cp, m !! a = Some (ACCESSORS getter_cp setter_cp)) l.

(** [mp] says what the hash map has *)
Definition list_is (mp : ecma_property_hashmap_t -> chain -> Prop) (m : gmap Z cell) (head : Z) (o : Z) (g : option Z * chain) : Prop :=
  match g.1 with
  | None => linked m head g.2
  | Some c => head = c /\ c <> JMEM_CP_NULL /\ exists h, m !! c = Some (HASHMAP h) /\ linked m (next_of_map h) g.2 /\ mp h g.2
  end /\ accs_in m (accs (refs o) g.2).

(** No name is there twice *)
Definition chain_ok (l : chain) : Prop := Forall prop_ok (contents l) /\ NoDup (map key (contents l)).

(** The mark of a property in memory *)
Definition cached_at (m : gmap Z cell) (q : Z * bool) : bool :=
  match m !! q.1 with Some (PAIR x) => ecma_is_property_lcached (types (get_slot x q.2)) | _ => false end.

Definition entry_used (e : ecma_lcache_hash_entry_t) : bool := negb (id e =? 0).

(** The identifier and the row of a property in the cache *)
Definition cache_id (o : Z) (p : prop) : Z := ECMA_LCACHE_CREATE_ID o (name_value (p_name p)).
Definition cache_row (o : Z) (p : prop) : nat := Z.to_nat (ecma_lcache_row_index o (name_value (p_name p))).

(** The cache has the marked properties, each of them once *)
Record cache_ok (m : gmap Z cell) (rows : list (list ecma_lcache_hash_entry_t)) (G : lists) : Prop := mk_cache_ok {
  cache_rows : length rows = Z.to_nat ECMA_LCACHE_HASH_ROWS_COUNT;
  cache_length : Forall (fun row => length row = Z.to_nat ECMA_LCACHE_HASH_ROW_LENGTH) rows;
  cache_sound : forall r row e, rows !! r = Some row -> e ∈ row -> entry_used e = true ->
    exists o g p, G !! o = Some g /\ prop_at g.2 (prop_p e) = Some p /\ id e = cache_id o p /\ r = cache_row o p /\ cached_at m (prop_p e) = true;
  cache_complete : forall o g q p, G !! o = Some g -> prop_at g.2 q = Some p -> cached_at m q = true ->
    exists row e, rows !! cache_row o p = Some row /\ e ∈ row /\ entry_used e = true /\ prop_p e = q;
  cache_once : forall r row, rows !! r = Some row -> NoDup (map prop_p (filter (fun e => entry_used e = true) row))
}.

(** [extra]: cells that were just allocated and are in no list yet *)
Record rep_m (M : maps) (w : pworld) (G : lists) (extra : list Z) : Prop := mk_rep {
  rep_heap : holding (heap w) (cell_size <$> cells w);
  rep_cps : forall cp c, cells w !! cp = Some c -> 0 < cp < 536870912;
  rep_lists : forall o, match objects w !! o, G !! o with Some ob, Some g => list_is (M o) (cells w) (property_list_cp ob) o g | None, None => True | _, _ => False end;
  rep_objects : forall o g, G !! o = Some g -> 0 < o < B32;
  rep_apart : forall o o' g g' c, G !! o = Some g -> G !! o' = Some g' -> c ∈ cells_of o g -> c ∈ cells_of o' g' -> o = o';
  rep_nodup : forall o g, G !! o = Some g -> NoDup (cells_of o g) /\ chain_ok g.2;
  rep_extra : forall o g c, G !! o = Some g -> c ∈ cells_of o g -> ~ c ∈ extra;
  rep_all : forall cp c, cells w !! cp = Some c -> (exists o g, G !! o = Some g /\ cp ∈ cells_of o g) \/ cp ∈ extra;
  rep_cache : cache_ok (cells w) (lcache w) G
}.

Abbreviation rep := (rep_m (fun _ => map_is)).

(** The same chains, maybe with other hash maps *)
Definition same_chains (G G' : lists) : Prop := snd <$> G' = snd <$> G.

(** ** Runs *)

(** [m] ends in [Q]; [stops] says when the process may end for lack of memory *)
Definition pruns {A} (stops : Prop) (m : P A) (w : pworld) (Q : A -> pworld -> Prop) : Prop :=
  match m w with PDONE _ a w' => Q a w' | PFATAL _ => stops | PFAULT _ => False end.

Lemma pruns_ret {A} stops (a : A) w (Q : A -> pworld -> Prop) : Q a w -> pruns stops (mret a) w Q.
Proof. exact (fun H => H). Qed.

Lemma pruns_bind {A B} stops (m : P A) (f : A -> P B) w Q : pruns stops m w (fun a w' => pruns stops (f a) w' Q) -> pruns stops (m ≫= f) w Q.
Proof. unfold pruns, mbind, P_bind. destruct (m w); auto. Qed.

Lemma pruns_mono {A} (stops : Prop) (m : P A) w (Q Q' : A -> pworld -> Prop) : pruns stops m w Q -> (forall a w', Q a w' -> Q' a w') -> pruns stops m w Q'.
Proof. unfold pruns. destruct (m w); auto. Qed.

Lemma pruns_stops {A} (stops stops' : Prop) (m : P A) w Q : (stops -> stops') -> pruns stops m w Q -> pruns stops' m w Q.
Proof. unfold pruns. destruct (m w); auto. Qed.

Lemma pruns_done {A B} stops (m : P A) (f : A -> P B) w a w' Q : m w = PDONE _ a w' -> pruns stops (f a) w' Q -> pruns stops (m ≫= f) w Q.
Proof. unfold pruns, mbind, P_bind. now intros ->. Qed.

Lemma pruns_final {A} stops (m : P A) w a w' (Q : A -> pworld -> Prop) : m w = PDONE _ a w' -> Q a w' -> pruns stops m w Q.
Proof. unfold pruns. now intros ->. Qed.

(** ** Chains and memory *)

Lemma pair_in_cps l cp x : pair_in l cp = Some x -> cp ∈ cps l.
Proof.
  induction l as [| [p y] l IH]; cbn [pair_in cps map fst]; [discriminate |]. destruct (Z.eqb_spec cp p) as [-> |]; [intros _; left | intros H; right; now apply IH].
Qed.

Lemma in_cps_pair l cp : cp ∈ cps l -> exists x, pair_in l cp = Some x.
Proof.
  induction l as [| [p y] l IH]; cbn [pair_in cps map fst]; intros H; [now apply elem_of_nil in H |]. destruct (Z.eqb_spec cp p); [now exists y |].
  apply elem_of_cons in H as [H | H]; [easy | now apply IH].
Qed.

Lemma linked_pair m l : forall head cp a, linked m head l -> pair_in l cp = Some a -> exists x, m !! cp = Some (PAIR x) /\ pair_is x a.
Proof.
  induction l as [| [p y] l IH]; intros head cp a H Hp; [discriminate |]. cbn [pair_in linked] in *. destruct H as (_ & _ & x & Hx & Hxa & Hl).
  destruct (Z.eqb_spec cp p) as [-> |]; [injection Hp as <-; now exists x | now apply (IH (next_property_cp x))].
Qed.

Lemma linked_frame m m' l : forall head, linked m head l -> (forall cp, cp ∈ cps l -> m' !! cp = m !! cp) -> linked m' head l.
Proof.
  induction l as [| [p y] l IH]; intros head H Hf; [exact H |]. cbn [linked] in *. destruct H as (-> & Hn & x & Hx & Hxa & Hl). splits; [reflexivity | exact Hn |].
  exists x. splits; [rewrite Hf; [exact Hx | left] | exact Hxa |]. apply IH; [exact Hl |]. intros cp Hcp. apply Hf. now right.
Qed.

(** One pair of a list changes *)
Lemma put_cps l cp a : cps (put l cp a) = cps l.
Proof. unfold cps, put. rewrite map_map. apply map_ext. intros [c x]. cbn. destruct (Z.eqb_spec c cp) as [-> |]; reflexivity. Qed.

Lemma put_out l cp a : ~ cp ∈ cps l -> put l cp a = l.
Proof.
  induction l as [| [c x] l IH]; cbn [put map cps fst]; intros H; [reflexivity |]. destruct (Z.eqb_spec c cp) as [-> | Hne]; [destruct H; left |].
  f_equal. apply IH. intros Hin. apply H. now right.
Qed.

Lemma put_same l cp a : NoDup (cps l) -> pair_in l cp = Some a -> put l cp a = l.
Proof.
  induction l as [| [c x] l IH]; cbn [put map cps fst pair_in]; intros Hnd H; [reflexivity |]. apply NoDup_cons in Hnd as [Hc Hnd]. rewrite (Z.eqb_sym c cp).
  destruct (Z.eqb_spec cp c) as [-> | Hne]; [injection H as ->; f_equal; now apply (put_out l c a) | f_equal; now apply IH].
Qed.

Lemma pair_in_put l cp a cp' : pair_in (put l cp a) cp' = if cp' =? cp then match pair_in l cp with Some _ => Some a | None => None end else pair_in l cp'.
Proof.
  induction l as [| [c x] l IH]; cbn [put map fst pair_in]; [now destruct (cp' =? cp) |]. destruct (Z.eqb_spec c cp) as [-> | Hne]; cbn [pair_in].
  - rewrite Z.eqb_refl. change (map _ l) with (put l cp a). rewrite IH. destruct (Z.eqb_spec cp' cp); reflexivity.
  - change (map _ l) with (put l cp a). rewrite IH, (proj2 (Z.eqb_neq cp c)) by congruence. destruct (Z.eqb_spec cp' c), (Z.eqb_spec cp' cp); congruence.
Qed.

Lemma linked_put m l x x' cp a : forall head, linked m head l -> NoDup (cps l) -> m !! cp = Some (PAIR x) -> next_property_cp x' = next_property_cp x -> pair_is x' a ->
  linked (<[cp := PAIR x']> m) head (put l cp a).
Proof.
  induction l as [| [c y] l IH]; intros head H Hnd Hx Hnext Ha; [exact H |]. cbn [linked cps map fst put] in *. destruct H as (-> & Hn & z & Hz & Hza & Hl). apply NoDup_cons in Hnd as [Hc Hnd].
  change (map _ l) with (put l cp a). destruct (Z.eqb_spec c cp) as [-> | Hne]; cbn [linked].
  - splits; [reflexivity | exact Hn |]. exists x'. splits; [apply lookup_insert_eq | exact Ha |]. rewrite Hx in Hz. injection Hz as <-. rewrite Hnext, put_out by exact Hc.
    apply (linked_frame m); [exact Hl |]. intros c Hin. apply lookup_insert_ne. intros ->. easy.
  - splits; [reflexivity | exact Hn |]. exists z. splits; [now rewrite lookup_insert_ne by congruence | exact Hza |]. now apply IH.
Qed.

Lemma linked_in m l : forall head cp, linked m head l -> cp ∈ cps l -> exists x, m !! cp = Some (PAIR x).
Proof. intros head cp H Hcp. destruct (in_cps_pair l cp Hcp) as [a Ha]. destruct (linked_pair m l head cp a H Ha) as (x & Hx & _). now exists x. Qed.

Lemma elem_app3 (c : Z) (x y z : list Z) : c ∈ x ++ y ++ z <-> c ∈ x \/ c ∈ y \/ c ∈ z.
Proof. rewrite !elem_of_app. tauto. Qed.

Lemma list_frame mp m m' head o g : list_is mp m head o g -> (forall cp, cp ∈ cells_of o g -> m' !! cp = m !! cp) -> list_is mp m' head o g.
Proof.
  unfold list_is. intros [H Ha] Hf. split.
  - destruct g as [[c |] l]; cbn [fst snd] in *.
    + destruct H as (-> & Hn & h & Hh & Hl & Hm). splits; [reflexivity | exact Hn |]. exists h. splits; [rewrite Hf; [exact Hh | apply elem_app3; left; left] | | exact Hm].
      apply (linked_frame m); [exact Hl |]. intros cp Hcp. apply Hf, elem_app3. right. now left.
    + apply (linked_frame m); [exact H |]. intros cp Hcp. apply Hf, elem_app3. right. now left.
  - unfold accs_in in *. rewrite Forall_forall in *. intros a Hin. rewrite Hf; [now apply Ha |]. apply elem_app3. right. now right.
Qed.

Lemma list_cell mp m head o g c : list_is mp m head o g -> c ∈ cells_of o g -> exists x, m !! c = Some x.
Proof.
  intros [H Ha] Hc. apply elem_app3 in Hc as [Hc | [Hc | Hc]].
  - destruct g as [[c0 |] l]; cbn [fst snd option_list] in *; [| now apply elem_of_nil in Hc]. apply list_elem_of_singleton in Hc as ->. destruct H as (-> & Hn & h & Hh & _). now exists (HASHMAP h).
  - destruct g as [[c0 |] l]; cbn [fst snd] in *; [destruct H as (-> & Hn & h & Hh & H & Hm) |]; destruct (linked_in m l _ c H Hc) as [x Hx]; now exists (PAIR x).
  - unfold accs_in in Ha. rewrite Forall_forall in Ha. destruct (Ha c Hc) as (x & y & E). now exists (ACCESSORS x y).
Qed.

Section Rep.
Context (M : maps) (w : pworld) (G : lists) (extra : list Z) (Hrep : rep_m M w G extra).

Lemma rep_list o g : G !! o = Some g -> exists ob, objects w !! o = Some ob /\ list_is (M o) (cells w) (property_list_cp ob) o g.
Proof. intros Hg. pose proof (rep_lists _ _ _ _ Hrep o) as H. rewrite Hg in H. destruct (objects w !! o) as [ob |]; [now exists ob | easy]. Qed.

Lemma rep_object o ob : objects w !! o = Some ob -> exists g, G !! o = Some g /\ list_is (M o) (cells w) (property_list_cp ob) o g.
Proof. intros Ho. pose proof (rep_lists _ _ _ _ Hrep o) as H. rewrite Ho in H. destruct (G !! o) as [g |]; [now exists g | easy]. Qed.

Lemma rep_cell o g c : G !! o = Some g -> c ∈ cells_of o g -> exists x, cells w !! c = Some x.
Proof. intros Hg Hc. destruct (rep_list o g Hg) as (ob & _ & Hl). exact (list_cell _ _ _ _ _ c Hl Hc). Qed.

(** The cells of one list are not those of another *)
Lemma rep_other o o' g g' c : G !! o = Some g -> G !! o' = Some g' -> o' <> o -> c ∈ cells_of o' g' -> ~ c ∈ cells_of o g /\ ~ c ∈ extra.
Proof.
  intros Hg Hg' Hne Hc. split; [| now apply (rep_extra _ _ _ _ Hrep o' g')]. intros Hc2. apply Hne. now apply (rep_apart _ _ _ _ Hrep o' o g' g c).
Qed.
End Rep.

(** ** Changes of one list *)

Lemma prop_at_cps l q p : prop_at l q = Some p -> q.1 ∈ cps l.
Proof. unfold prop_at. destruct (pair_in l q.1) as [x |] eqn:E; [intros _; now apply (pair_in_cps l q.1 x) | discriminate]. Qed.

Lemma cached_frame m m' q : m' !! q.1 = m !! q.1 -> cached_at m' q = cached_at m q.
Proof. unfold cached_at. now intros ->. Qed.

Lemma cache_change m m' rows G o g g' : cache_ok m rows G -> G !! o = Some g ->
  (forall q p, prop_at g.2 q = Some p -> cached_at m q = true -> prop_at g'.2 q = Some p /\ cached_at m' q = true) ->
  (forall q p, prop_at g'.2 q = Some p -> cached_at m' q = true -> prop_at g.2 q = Some p /\ cached_at m q = true) ->
  (forall o' g0 q p, o' <> o -> G !! o' = Some g0 -> prop_at g0.2 q = Some p -> cached_at m' q = cached_at m q) ->
  cache_ok m' rows (<[o := g']> G).
Proof.
  intros [H1 H2 Hsound Hcomplete Honce] Hg Hto Hfrom Hother. constructor; [exact H1 | exact H2 | | | exact Honce].
  - intros r row e Hrow He Hused. destruct (Hsound r row e Hrow He Hused) as (o' & g0 & p & Hg0 & Hp & Hid & Hr & Hc). destruct (decide (o' = o)) as [-> | Hne].
    + rewrite Hg in Hg0. injection Hg0 as <-. destruct (Hto _ _ Hp Hc) as [Hp' Hc']. exists o, g', p. splits; try assumption. apply lookup_insert_eq.
    + exists o', g0, p. splits; try assumption; [now rewrite lookup_insert_ne by congruence |]. now rewrite (Hother o' g0 _ p).
  - intros o' g0 q p Hg0 Hp Hc. destruct (decide (o' = o)) as [-> | Hne].
    + rewrite lookup_insert_eq in Hg0. injection Hg0 as <-. destruct (Hfrom _ _ Hp Hc) as [Hp' Hc']. now apply (Hcomplete o g).
    + rewrite lookup_insert_ne in Hg0 by congruence. apply (Hcomplete o' g0); [exact Hg0 | exact Hp |]. now rewrite <- (Hother o' g0 q p).
Qed.

(** One list changes, with the cells that are in no list *)
Lemma list_change (M M' : maps) w w' G o g g' extra extra' ob' : rep_m M w G extra -> G !! o = Some g ->
  holding (heap w') (cell_size <$> cells w') ->
  objects w' !! o = Some ob' -> list_is (M' o) (cells w') (property_list_cp ob') o g' ->
  (forall o', o' <> o -> objects w' !! o' = objects w !! o' /\ M' o' = M o') ->
  (forall c, ~ c ∈ cells_of o g -> ~ c ∈ extra -> cells w' !! c = cells w !! c) ->
  (forall c x, cells w' !! c = Some x -> (exists x0, cells w !! c = Some x0) /\ (c ∈ cells_of o g \/ c ∈ extra -> c ∈ cells_of o g' \/ c ∈ extra')) ->
  (forall c, c ∈ cells_of o g' \/ c ∈ extra' -> c ∈ cells_of o g \/ c ∈ extra) ->
  (forall c, c ∈ cells_of o g' -> ~ c ∈ extra') ->
  NoDup (cells_of o g') -> chain_ok g'.2 -> cache_ok (cells w') (lcache w') (<[o := g']> G) ->
  rep_m M' w' (<[o := g']> G) extra'.
Proof.
  intros Hrep Hg Hheap Hob Hlist Hrest Hframe Hdom Hsub Hdisj Hnd Hok Hcache.
  assert (Hout : forall o' g0 c, o' <> o -> G !! o' = Some g0 -> c ∈ cells_of o' g0 -> ~ c ∈ cells_of o g' /\ ~ c ∈ extra').
  { intros o' g0 c Hne Hg0 Hc. destruct (rep_other _ _ _ _ Hrep o o' g g0 c Hg Hg0 Hne Hc) as [N1 N2]. split; intros H; destruct (Hsub c); tauto. }
  assert (Hins : forall o' g0, <[o := g']> G !! o' = Some g0 -> (o' = o /\ g0 = g') \/ (o' <> o /\ G !! o' = Some g0)).
  { intros o' g0 H. destruct (decide (o' = o)) as [-> | Hne]; [rewrite lookup_insert_eq in H; injection H as <-; now left | rewrite lookup_insert_ne in H by congruence; now right]. }
  constructor; [exact Hheap | | | | | | | | exact Hcache].
  - intros cp c Hc. destruct (Hdom cp c Hc) as [[x0 E] _]. exact (rep_cps _ _ _ _ Hrep cp x0 E).
  - intros o'. destruct (decide (o' = o)) as [-> | Hne]; [now rewrite Hob, lookup_insert_eq |]. rewrite lookup_insert_ne by congruence. destruct (Hrest o' Hne) as [-> ->].
    pose proof (rep_lists _ _ _ _ Hrep o') as H. destruct (objects w !! o'), (G !! o') as [g0 |] eqn:E; try easy. apply (list_frame _ (cells w)); [exact H |].
    intros cp Hcp. destruct (rep_other _ _ _ _ Hrep o o' g g0 cp Hg E Hne Hcp). now apply Hframe.
  - intros o' g0 H. destruct (Hins o' g0 H) as [[-> _] | [_ H0]]; [now apply (rep_objects _ _ _ _ Hrep o g) | now apply (rep_objects _ _ _ _ Hrep o' g0)].
  - intros o1 o2 g1 g2 c H1 H2 Hc1 Hc2. destruct (Hins o1 g1 H1) as [[-> ->] | [N1 E1]], (Hins o2 g2 H2) as [[-> ->] | [N2 E2]]; [reflexivity | | | exact (rep_apart _ _ _ _ Hrep o1 o2 g1 g2 c E1 E2 Hc1 Hc2)].
    + now destruct (Hout o2 g2 c N2 E2 Hc2).
    + now destruct (Hout o1 g1 c N1 E1 Hc1).
  - intros o' g0 H. destruct (Hins o' g0 H) as [[-> ->] | [_ H0]]; [now split | now apply (rep_nodup _ _ _ _ Hrep o')].
  - intros o' g0 c H Hc. destruct (Hins o' g0 H) as [[-> ->] | [Hne H0]]; [now apply Hdisj | now apply (Hout o' g0)].
  - intros cp c Hc. destruct (Hdom cp c Hc) as [[x0 E] Hto]. destruct (rep_all _ _ _ _ Hrep cp x0 E) as [(o' & g0 & H0 & Hcp) | Hcp].
    + destruct (decide (o' = o)) as [-> | Hne].
      * rewrite Hg in H0. injection H0 as <-. destruct (Hto (or_introl Hcp)) as [H | H]; [left | now right]. exists o, g'. split; [apply lookup_insert_eq | exact H].
      * left. exists o', g0. split; [now rewrite lookup_insert_ne by congruence | exact Hcp].
    + destruct (Hto (or_intror Hcp)) as [H | H]; [left | now right]. exists o, g'. split; [apply lookup_insert_eq | exact H].
Qed.

(** The same state otherwise *)
Lemma rep_same (M : maps) w w' G extra : rep_m M w G extra -> cells w' = cells w -> objects w' = objects w -> lcache w' = lcache w -> holding (heap w') (cell_size <$> cells w) -> rep_m M w' G extra.
Proof. intros [] E1 E2 E3 E4. constructor; rewrite ?E1, ?E2, ?E3; assumption. Qed.

Lemma rep_maps (M M' : maps) w G extra : rep_m M w G extra -> (forall o c l h, G !! o = Some (Some c, l) -> M o h l -> M' o h l) -> rep_m M' w G extra.
Proof.
  intros [] HM. constructor; try assumption. intros o. specialize (rep_lists0 o). destruct (objects w !! o), (G !! o) as [[[c |] l] |] eqn:E; try easy.
  destruct rep_lists0 as [(H1 & H2 & h & H3 & H4 & H5) H6]. split; [| exact H6]. cbn [fst snd] in *. splits; [exact H1 | exact H2 |]. exists h. splits; [exact H3 | exact H4 |]. now apply (HM o c).
Qed.

(** ** Objects with the same chains *)

Lemma same_refl G : same_chains G G.
Proof. reflexivity. Qed.

Lemma same_trans G1 G2 G3 : same_chains G1 G2 -> same_chains G2 G3 -> same_chains G1 G3.
Proof. unfold same_chains. congruence. Qed.

Lemma same_lookup G G' o c l : same_chains G G' -> G !! o = Some (c, l) -> exists c', G' !! o = Some (c', l).
Proof.
  unfold same_chains. intros Hs Hg. assert (H : (snd <$> G') !! o = Some l) by (rewrite Hs, lookup_fmap, Hg; reflexivity).
  rewrite lookup_fmap in H. destruct (G' !! o) as [[c' l'] |]; [| discriminate]. injection H as ->. now exists c'.
Qed.

Lemma same_insert G o c c' l : G !! o = Some (c, l) -> same_chains G (<[o := (c', l)]> G).
Proof. intros H. unfold same_chains. rewrite fmap_insert. apply insert_id. now rewrite lookup_fmap, H. Qed.

(** ** Release of a hash map *)

Lemma fmap_size_delete (m : gmap Z cell) c : cell_size <$> delete c m = delete c (cell_size <$> m).
Proof. apply fmap_delete. Qed.

Lemma hashmap_free_spec stops (M : maps) w G extra o c l : rep_m M w G extra -> G !! o = Some (Some c, l) ->
  pruns stops (ecma_property_hashmap_free o) w (fun _ w' => rep_m M w' (<[o := (None, l)]> G) extra /\ log w' = log w /\ forall cp, cp ∈ extra -> cells w' !! cp = cells w !! cp).
Proof.
  intros Hrep Hg. destruct (rep_list _ w G extra Hrep o _ Hg) as (ob & Ho & [Hlist Haccs]). cbn [fst snd] in Hlist, Haccs. destruct Hlist as (Hhead & Hc0 & h & Hh & Hlinked & Hmap).
  destruct (rep_nodup _ _ _ _ Hrep o _ Hg) as [Hnd Hok]. cbn [cells_of fst snd option_list app] in Hnd, Hok. change (NoDup (c :: (cps l ++ accs (refs o) l))) in Hnd. apply NoDup_cons in Hnd as [Hcl Hnd].
  assert (Hsize : (cell_size <$> cells w) !! c = Some (ECMA_PROPERTY_HASHMAP_GET_TOTAL_SIZE (max_property_count h))) by (rewrite lookup_fmap, Hh; reflexivity).
  destruct (free_holding _ _ _ _ (rep_heap _ _ _ _ Hrep) Hsize) as (heap' & Hfree & Hheap').
  unfold ecma_property_hashmap_free. eapply pruns_done; [unfold get_list; rewrite Ho; reflexivity |]. rewrite Hhead. eapply pruns_done; [unfold get_hashmap; rewrite Hh; reflexivity |].
  eapply pruns_done; [unfold put_list; rewrite Ho; reflexivity |]. eapply pruns_final; [unfold jmem_heap_free_block; cbn [heap set_objects]; rewrite Hfree; reflexivity |].
  assert (Hframe : forall cp, cp <> c -> delete c (cells w) !! cp = cells w !! cp) by (intros cp Hne; now apply lookup_delete_ne).
  split; [| split; [reflexivity | intros cp Hcp; apply Hframe; intros ->; apply (rep_extra _ _ _ _ Hrep o _ c Hg); [left | exact Hcp]]].
  apply (list_change M M w _ G o (Some c, l) (None, l) extra extra (mk_object (next_of_map h) (swept ob))); cbn [heap cells objects lcache set_cells set_heap set_objects fst snd]; try assumption.
  - now rewrite fmap_size_delete.
  - apply lookup_insert_eq.
  - split; cbn [fst snd property_list_cp].
    + apply (linked_frame (cells w)); [exact Hlinked |]. intros cp Hcp. apply Hframe. intros ->. apply Hcl, elem_of_app. now left.
    + unfold accs_in in *. rewrite Forall_forall in *. intros a Ha. rewrite Hframe; [now apply Haccs |]. intros ->. apply Hcl, elem_of_app. now right.
  - intros o' Hne. split; [now rewrite lookup_insert_ne by congruence | reflexivity].
  - intros cp Hcp _. apply Hframe. intros ->. apply Hcp. left.
  - intros cp x Hx. apply lookup_delete_Some in Hx as [Hne Hx]. split; [now exists x |]. intros [H | H]; [left | now right]. apply elem_of_cons in H as [-> | H]; [easy | exact H].
  - intros cp [H | H]; [left; now right | now right].
  - intros cp H. apply (rep_extra _ _ _ _ Hrep o (Some c, l) cp Hg). now right.
  - apply (cache_change (cells w) _ _ G o (Some c, l)); [exact (rep_cache _ _ _ _ Hrep) | exact Hg | | |]; cbn [fst snd].
    + intros q p Hp Hc. split; [exact Hp |]. rewrite <- Hc. apply cached_frame, Hframe. intros E. apply Hcl, elem_of_app. left. rewrite <- E. exact (prop_at_cps _ _ _ Hp).
    + intros q p Hp Hc. split; [exact Hp |]. rewrite <- Hc. symmetry. apply cached_frame, Hframe. intros E. apply Hcl, elem_of_app. left. rewrite <- E. exact (prop_at_cps _ _ _ Hp).
    + intros o' g0 q p Hne Hg0 Hp. apply cached_frame, Hframe. intros E.
      destruct (rep_other _ _ _ _ Hrep o o' _ g0 q.1 Hg Hg0 Hne) as [N _]; [apply elem_app3; right; left; exact (prop_at_cps _ _ _ Hp) |]. apply N. rewrite E. left.
Qed.
End Theory.
