(* ===== verification/PropMemory.v ===== *)
(** * Property lists under memory pressure

    Requests for memory may release hash maps of other lists, and of the list at hand; the
    chains stay as they are.  The specifications of the allocations of Properties.v. *)
From Stdlib Require Import ZArith Lia Bool List.
From stdpp Require Import base gmap list.
From S2P Require Import Prelude JmemHeap JmemPointers Values Jmem PropNames PropHashmap PropProbing Properties PropState.
Import ListNotations.
#[local] Open Scope Z_scope.

Section Memory.
Context {PN : PropertyNames} {PH : PropertyHeap}.

(** What another part of the program may see of a change of memory *)
Record kept (w w' : pworld) (G G' : gmap Z (option Z * chain)) (extra : list Z) : Prop := mk_kept {
  kept_chains : same_chains G G';
  kept_log : log w' = log w;
  kept_extra : forall cp, cp ∈ extra -> cells w' !! cp = cells w !! cp
}.

(** Moreover, there are no new hash maps *)
Record lowered (w w' : pworld) (G G' : gmap Z (option Z * chain)) (extra : list Z) : Prop := mk_lowered {
  lowered_kept : kept w w' G G' extra;
  lowered_maps : forall o l, G !! o = Some (None, l) -> G' !! o = Some (None, l)
}.

Lemma kept_refl w G extra : kept w w G G extra.
Proof. constructor; [apply same_refl | reflexivity | reflexivity]. Qed.

Lemma kept_steps w1 w2 w3 G1 G2 G3 extra : kept w1 w2 G1 G2 extra -> kept w2 w3 G2 G3 extra -> kept w1 w3 G1 G3 extra.
Proof.
  intros [C1 L1 E1] [C2 L2 E2]. constructor; [exact (same_trans _ _ _ C1 C2) | congruence |]. intros cp H. now rewrite E2, E1.
Qed.

Lemma lowered_refl w G extra : lowered w w G G extra.
Proof. constructor; [apply kept_refl | auto]. Qed.

Lemma lowered_trans w1 w2 w3 G1 G2 G3 extra : lowered w1 w2 G1 G2 extra -> lowered w2 w3 G2 G3 extra -> lowered w1 w3 G1 G3 extra.
Proof. intros [K1 N1] [K2 N2]. constructor; [exact (kept_steps _ _ _ _ _ _ _ K1 K2) | auto]. Qed.

(** ** The first cell of a list *)

Lemma slot_type s p : prop_ok p -> slot_is s (Some p) -> exists flags, 0 <= flags < 64 /\ types s = flags + 64 * name_type (p_name p) /\ (name_type (p_name p) = ECMA_DIRECT_STRING_SPECIAL -> 32 <= flags).
Proof.
  intros (Hn & Hf & Hlow & Hsp) (_ & _ & cached & Et). exists (p_flags p + mark cached). split; [| split; [lia | intros H; specialize (Hsp H); unfold mark, ECMA_PROPERTY_FLAG_LCACHED; destruct cached; lia]].
  unfold mark, ECMA_PROPERTY_FLAG_LCACHED. destruct cached; Z.div_mod_to_equations; lia.
Qed.

Lemma slot_not_map s a : (forall p, a = Some p -> prop_ok p) -> slot_is s a -> types s =? ECMA_PROPERTY_TYPE_HASHMAP = false.
Proof.
  intros Hok Hs. apply Z.eqb_neq. change ECMA_PROPERTY_TYPE_HASHMAP with 192. destruct a as [p |]; [| destruct Hs as [-> _]; change ECMA_PROPERTY_TYPE_DELETED with 200; lia].
  destruct (slot_type s p (Hok p eq_refl) Hs) as (flags & Hf & -> & Hsp). change ECMA_DIRECT_STRING_SPECIAL with 3 in Hsp. destruct (proj1 (Hok p eq_refl)) as [k Hk].
  destruct (name_view (p_name p) (ex_intro _ k Hk)) as (Ht & _). lia.
Qed.

Lemma prop_in l q p : prop_at l q = Some p -> In p (contents l).
Proof.
  unfold prop_at, contents. induction l as [| [c x] l IH]; cbn [pair_in map concat snd]; [discriminate |]. intros H. apply in_or_app. destruct (q.1 =? c); [left | right; now apply IH].
  destruct q as [cp []], x as [[a |] [b |]]; cbn in *; try discriminate; injection H as ->; cbn; auto.
Qed.

Lemma chain_prop_ok l q p : chain_ok l -> prop_at l q = Some p -> prop_ok p.
Proof. intros [H _] Hp. rewrite Forall_forall in H. apply H. apply list_elem_of_In. exact (prop_in l q p Hp). Qed.

Lemma pair_props_ok l cp x : chain_ok l -> pair_in l cp = Some x -> forall b p, aget x b = Some p -> prop_ok p.
Proof. intros Hok Hx b p Hp. apply (chain_prop_ok l (cp, b)); [exact Hok |]. unfold prop_at. cbn. now rewrite Hx. Qed.

Context (refs : Z -> bool).

Lemma head_cell M w G extra o g ob : rep_m refs M w G extra -> G !! o = Some g -> objects w !! o = Some ob -> property_list_cp ob <> JMEM_CP_NULL ->
  exists c, cells w !! property_list_cp ob = Some c /\ header_type c =? ECMA_PROPERTY_TYPE_HASHMAP = match g.1 with Some _ => true | None => false end.
Proof.
  intros Hrep Hg Ho Hn. destruct (rep_list _ _ _ _ _ Hrep o g Hg) as (ob' & Ho' & [Hl _]). rewrite Ho in Ho'. injection Ho' as <-. destruct (rep_nodup _ _ _ _ _ Hrep o g Hg) as [_ Hok].
  destruct g as [[c |] [| [p a] l]]; cbn [fst snd linked] in *.
  - destruct Hl as (-> & _ & h & Hh & _). exists (HASHMAP h). split; [exact Hh | reflexivity].
  - destruct Hl as (-> & _ & h & Hh & _). exists (HASHMAP h). split; [exact Hh | reflexivity].
  - congruence.
  - destruct Hl as (-> & _ & x & Hx & Ha & _). exists (PAIR x). split; [exact Hx |]. cbn [header_type]. apply (slot_not_map _ a.1); [| apply Ha].
    intros p0 E. apply (pair_props_ok _ p a Hok) with (b := false); [cbn; now rewrite Z.eqb_refl | exact E].
Qed.

(** [has_hashmap], with its test of the pointer *)
Lemma has_map_run M w G extra o g ob : rep_m refs M w G extra -> G !! o = Some g -> objects w !! o = Some ob ->
  (if property_list_cp ob =? JMEM_CP_NULL then mret false else has_hashmap (property_list_cp ob)) w = PDONE _ (match g.1 with Some _ => true | None => false end) w.
Proof.
  intros Hrep Hg Ho. destruct (Z.eqb_spec (property_list_cp ob) JMEM_CP_NULL) as [E | Hn].
  - destruct (rep_list _ _ _ _ _ Hrep o g Hg) as (ob' & Ho' & [Hl _]). rewrite Ho in Ho'. injection Ho' as <-. destruct g as [[c |] l]; [cbn in Hl; destruct Hl as (E2 & Hc & _); congruence | reflexivity].
  - destruct (head_cell M w G extra o g ob Hrep Hg Ho Hn) as (c & Hc & E). unfold has_hashmap, mbind, P_bind, get_cell. rewrite Hc. now rewrite E.
Qed.

(** ** Pressure *)

Lemma sweep_hashmaps_spec M l : forall w G extra, rep_m refs M w G extra -> Forall (fun x => exists g, G !! x.1 = Some g) l ->
  pruns False (free_hashmaps l) w (fun _ w' => exists G', rep_m refs M w' G' extra /\ lowered w w' G G' extra).
Proof.
  induction l as [| [o ob0] l IH]; intros w G extra Hrep Hl; cbn [free_hashmaps].
  - apply pruns_ret. exists G. split; [exact Hrep | apply lowered_refl].
  - apply Forall_cons in Hl as [[g Hg] Hl]. cbn [fst] in Hg.
    assert (Hskip : pruns False (free_hashmaps l) w (fun _ w' => exists G', rep_m refs M w' G' extra /\ lowered w w' G G' extra)) by now apply IH.
    destruct (swept ob0); [| now apply pruns_bind, pruns_ret]. destruct (rep_list _ _ _ _ _ Hrep o g Hg) as (ob & Ho & _).
    apply pruns_bind. eapply pruns_done; [unfold get_list; rewrite Ho; reflexivity |]. destruct (Z.eqb_spec (property_list_cp ob) JMEM_CP_NULL) as [_ | Hn]; cbn [negb]; [now apply pruns_ret |].
    destruct (head_cell M w G extra o g ob Hrep Hg Ho Hn) as (c & Hc & E). eapply pruns_done; [unfold get_cell; rewrite Hc; reflexivity |]. rewrite E.
    destruct g as [[hc |] ch]; cbn [fst]; [| now apply pruns_ret].
    eapply pruns_mono; [exact (hashmap_free_spec refs False M w G extra o hc ch Hrep Hg) |]. intros _ w1 (Hrep1 & Hlog & Hex). cbv beta.
    assert (Hk : lowered w w1 G (<[o := (None, ch)]> G) extra) by (constructor; [constructor; [now apply (same_insert G o (Some hc)) | exact Hlog | exact Hex] |]; intros o2 l2 H2; rewrite lookup_insert_ne; [exact H2 | congruence]).
    eapply pruns_mono; [apply (IH w1 (<[o := (None, ch)]> G) extra Hrep1) |].
    + eapply Forall_impl; [exact Hl |]. intros [o2 ob2] [g2 Hg2]. destruct (decide (o2 = o)) as [-> | Hne]; [exists (None, ch); apply lookup_insert_eq | exists g2; cbn; now rewrite lookup_insert_ne by congruence].
    + intros _ w2 (G2 & Hrep2 & Hk2). exists G2. split; [exact Hrep2 | exact (lowered_trans _ _ _ _ _ _ _ Hk Hk2)].
Qed.

Lemma rep_heap_only M w w' G extra : rep_m refs M w G extra -> cells w' = cells w -> objects w' = objects w -> lcache w' = lcache w -> log w' = log w -> holding (heap w') (cell_size <$> cells w) ->
  rep_m refs M w' G extra /\ lowered w w' G G extra.
Proof. intros Hrep E1 E2 E3 E4 Hh. split; [now apply (rep_same refs M w) |]. constructor; [constructor; [apply same_refl | exact E4 | now rewrite E1] | auto]. Qed.

Lemma pressure_spec M w G extra pressure : rep_m refs M w G extra -> pressure <> JMEM_PRESSURE_NONE ->
  pruns (pressure = JMEM_PRESSURE_FULL) (ecma_free_unused_memory pressure) w (fun _ w' => pressure <> JMEM_PRESSURE_FULL /\ exists G', rep_m refs M w' G' extra /\ lowered w w' G G' extra).
Proof.
  intros Hrep Hp. pose proof (rep_heap _ _ _ _ _ Hrep) as Hheap. destruct pressure; [easy | | | reflexivity]; cbn [ecma_free_unused_memory]; (eapply pruns_done; [reflexivity |]).
  - cbv zeta. eapply pruns_done; [reflexivity |]. cbn [heap set_alloc_state]. destruct (low_pressure_runs (heap w)).
    + eapply pruns_final; [reflexivity |]. split; [discriminate |]. exists G. apply rep_heap_only; try reflexivity; [exact Hrep | now apply gc_holding].
    + apply pruns_ret. split; [discriminate |]. exists G. now apply rep_heap_only.
  - set (w1 := if ECMA_STATUS_HIGH_PRESSURE_GC w then set_alloc_state ECMA_PROP_HASHMAP_ALLOC_MAX true w
      else if ecma_prop_hashmap_alloc_state w <? ECMA_PROP_HASHMAP_ALLOC_MAX then set_alloc_state (ecma_prop_hashmap_alloc_state w + 1) true w else w).
    cbv zeta. apply (pruns_done _ _ _ w tt w1); [unfold w1; destruct (ECMA_STATUS_HIGH_PRESSURE_GC w); [reflexivity |]; destruct (_ <? _); reflexivity |].
    assert (H1 : rep_m refs M w1 G extra /\ lowered w w1 G G extra) by (unfold w1; destruct (ECMA_STATUS_HIGH_PRESSURE_GC w); [now apply rep_heap_only |]; destruct (_ <? _); now apply rep_heap_only).
    destruct H1 as [Hrep1 Hk1]. eapply pruns_done; [reflexivity |]. eapply pruns_done; [reflexivity |]. set (w2 := set_heap (gc_run (heap w1)) w1).
    destruct (rep_heap_only M w1 w2 G extra Hrep1) as [Hrep2 Hk2]; try reflexivity; [apply gc_holding; exact (rep_heap _ _ _ _ _ Hrep1) |].
    eapply pruns_stops; [| eapply pruns_mono; [apply (sweep_hashmaps_spec M _ w2 G extra Hrep2) |]]; [easy | |].
    + apply Forall_forall. intros [o ob] Hin. apply elem_of_map_to_list in Hin. destruct (rep_object _ _ _ _ _ Hrep2 o ob Hin) as (g & Hg & _). now exists g.
    + intros _ w3 (G3 & Hrep3 & Hk3). split; [discriminate |]. exists G3. split; [exact Hrep3 |]. exact (lowered_trans _ _ _ _ _ _ _ Hk1 (lowered_trans _ _ _ _ _ _ _ Hk2 Hk3)).
Qed.

(** ** Allocation *)

(** A new cell is in no list *)
Lemma rep_new M w G extra cp c heap' : rep_m refs M w G extra -> cells w !! cp = None -> 0 < cp < 536870912 -> holding heap' (<[cp := cell_size c]> (cell_size <$> cells w)) ->
  rep_m refs M (set_cells (<[cp := c]> (cells w)) (set_heap heap' w)) G (cp :: extra).
Proof.
  intros Hrep Hnew Hr Hheap. assert (Hout : forall o g x, G !! o = Some g -> x ∈ cells_of refs o g -> x <> cp).
  { intros o g x Hg Hx ->. destruct (rep_cell _ _ _ _ _ Hrep o g cp Hg Hx) as [y Hy]. congruence. }
  constructor; cbn [heap cells objects lcache set_cells set_heap].
  - now rewrite fmap_insert.
  - intros cp' c' H. apply lookup_insert_Some in H as [[<- _] | [_ H]]; [exact Hr | exact (rep_cps _ _ _ _ _ Hrep cp' c' H)].
  - intros o. pose proof (rep_lists _ _ _ _ _ Hrep o) as H. destruct (objects w !! o), (G !! o) as [g |] eqn:E; try easy. apply (list_frame refs _ (cells w)); [exact H |].
    intros x Hx. apply lookup_insert_ne. intros <-. now apply (Hout o g cp E Hx).
  - exact (rep_objects _ _ _ _ _ Hrep).
  - exact (rep_apart _ _ _ _ _ Hrep).
  - exact (rep_nodup _ _ _ _ _ Hrep).
  - intros o g x Hg Hx H. apply elem_of_cons in H as [-> | H]; [now apply (Hout o g cp Hg Hx) | now apply (rep_extra _ _ _ _ _ Hrep o g x)].
  - intros cp' c' H. apply lookup_insert_Some in H as [[<- _] | [_ H]]; [right; left |]. destruct (rep_all _ _ _ _ _ Hrep cp' c' H) as [H' | H']; [now left | right; now right].
  - destruct (rep_cache _ _ _ _ _ Hrep) as [H1 H2 Hsound Hcomplete Honce]. assert (Hf : forall o g q p, G !! o = Some g -> prop_at g.2 q = Some p -> cached_at (<[cp := c]> (cells w)) q = cached_at (cells w) q).
    { intros o g q p Hg Hp. apply cached_frame, lookup_insert_ne. intros E. apply (Hout o g q.1 Hg); [| now symmetry]. apply elem_of_app; right; apply elem_of_app; left. exact (prop_at_cps _ _ _ Hp). }
    constructor; [exact H1 | exact H2 | | | exact Honce].
    + intros r row e Hrow He Hu. destruct (Hsound r row e Hrow He Hu) as (o & g & p & Hg & Hp & H). exists o, g, p. rewrite (Hf o g _ p Hg Hp). exact (conj Hg (conj Hp H)).
    + intros o g q p Hg Hp. rewrite (Hf o g q p Hg Hp). exact (Hcomplete o g q p Hg Hp).
Qed.

(** The extra cells are there *)
Definition present (w : pworld) (extra : list Z) : Prop := Forall (fun cp => exists c, cells w !! cp = Some c) extra.

Lemma lowered_present w w' G G' extra : lowered w w' G G' extra -> present w extra -> present w' extra.
Proof. intros [[_ _ H] _] Hp. unfold present in *. rewrite Forall_forall in *. intros cp Hin. destruct (Hp cp Hin) as [c E]. exists c. now rewrite H. Qed.

Section Alloc.
Context (M : maps) (extra : list Z).

(** What a request gives: a result that is good, or the lists as they are *)
Definition given {A} (good : A -> pworld -> gmap Z (option Z * chain) -> Prop) (w0 : pworld) (G : gmap Z (option Z * chain)) (r : option A) (w : pworld) : Prop :=
  exists G', lowered w0 w G G' extra /\ match r with None => rep_m refs M w G' extra | Some a => good a w G' end.

Lemma given_after {A} good w0 w1 G G1 (r : option A) w : lowered w0 w1 G G1 extra -> given good w1 G1 r w -> given good w0 G r w.
Proof. intros Hk (G' & Hk' & H). exists G'. split; [exact (lowered_trans _ _ _ _ _ _ _ Hk Hk') | exact H]. Qed.

Section Pressure.
Context {A : Type} (good : A -> pworld -> gmap Z (option Z * chain) -> Prop) (alloc : P (option A)).
Context (Halloc : forall w G, rep_m refs M w G extra -> present w extra -> pruns False alloc w (given good w G)).

Lemma pressure_loop_spec fuel max_pressure : forall pressure r w0 w G, pressure_level max_pressure - pressure_level pressure <= Z.of_nat fuel -> pressure_level pressure <= pressure_level max_pressure ->
  present w0 extra -> given good w0 G r w -> pressure <> JMEM_PRESSURE_FULL \/ r <> None ->
  pruns (max_pressure = JMEM_PRESSURE_FULL) (pressure_loop fuel alloc pressure max_pressure r) w (fun r w' => given good w0 G r w' /\ (max_pressure = JMEM_PRESSURE_FULL -> r <> None)).
Proof.
  assert (Hret : forall pressure r w0 w G, given good w0 G r w -> r <> None \/ pressure <> JMEM_PRESSURE_FULL /\ pressure_level max_pressure <= pressure_level pressure ->
    pruns (max_pressure = JMEM_PRESSURE_FULL) (mret r) w (fun r w' => given good w0 G r w' /\ (max_pressure = JMEM_PRESSURE_FULL -> r <> None))).
  { intros pressure r w0 w G Ha Hr. apply pruns_ret. split; [exact Ha |]. intros ->. destruct Hr as [H | [H1 H2]]; [exact H |]. destruct pressure; cbn in H2; (lia || easy). }
  induction fuel as [| fuel IH]; intros pressure r w0 w G Hf Hle Hpr Ha Hr.
  - destruct r as [a |]; [now apply (Hret pressure); [| left] |]. cbn [pressure_loop]. rewrite (proj2 (Z.ltb_ge _ _)) by lia. apply (Hret pressure); [exact Ha |]. destruct Hr as [Hr | Hr]; [right; split; [exact Hr | lia] | now left].
  - destruct r as [a |]; [now apply (Hret pressure); [| left] |]. cbn [pressure_loop]. destruct (Z.ltb_spec (pressure_level pressure) (pressure_level max_pressure)) as [Hlt |]; [| apply (Hret pressure); [exact Ha |]; destruct Hr as [Hr | Hr]; [right; split; [exact Hr | lia] | now left]]. cbv zeta.
    destruct Ha as (G1 & Hk1 & Hrep1). assert (Hnext : pressure_level (next_pressure pressure) = pressure_level pressure + 1) by (destruct pressure, max_pressure; cbn in Hlt |- *; lia).
    apply pruns_bind. eapply pruns_stops; [| eapply pruns_mono; [apply (pressure_spec M w G1 extra (next_pressure pressure) Hrep1); now destruct pressure |]].
    { intros E. destruct pressure, max_pressure; cbn in E, Hlt; (discriminate || lia || reflexivity). }
    intros _ w2 (Hnf & G2 & Hrep2 & Hk2). cbv beta. assert (Hk : lowered w0 w2 G G2 extra) by exact (lowered_trans _ _ _ _ _ _ _ Hk1 Hk2).
    apply pruns_bind. eapply pruns_stops; [| eapply pruns_mono; [apply (Halloc w2 G2 Hrep2 (lowered_present _ _ _ _ _ Hk Hpr)) |]]; [easy |].
    intros r w3 Ha3. cbv beta. apply IH; [lia | lia | exact Hpr | exact (given_after good _ _ _ _ _ _ Hk Ha3) | now left].
Qed.

Lemma gc_and_alloc_spec w G size max_pressure : rep_m refs M w G extra -> present w extra -> pressure_level JMEM_PRESSURE_LOW <= pressure_level max_pressure ->
  pruns (max_pressure = JMEM_PRESSURE_FULL) (gc_and_alloc size alloc max_pressure) w (fun r w' => given good w G r w' /\ (max_pressure = JMEM_PRESSURE_FULL -> r <> None)).
Proof.
  intros Hrep Hpr Hmax. unfold gc_and_alloc. eapply pruns_done; [reflexivity |]. apply pruns_bind.
  assert (Hrest : forall pressure w1 G1, rep_m refs M w1 G1 extra -> lowered w w1 G G1 extra -> pressure_level pressure <= pressure_level JMEM_PRESSURE_LOW ->
    pruns (max_pressure = JMEM_PRESSURE_FULL) (r ← alloc; pressure_loop 3 alloc pressure max_pressure r) w1 (fun r w' => given good w G r w' /\ (max_pressure = JMEM_PRESSURE_FULL -> r <> None))).
  { intros pressure w1 G1 Hrep1 Hk1 Hpl. apply pruns_bind. eapply pruns_stops; [| eapply pruns_mono; [apply (Halloc w1 G1 Hrep1 (lowered_present _ _ _ _ _ Hk1 Hpr)) |]]; [easy |].
    intros r w2 Ha. cbv beta. apply pressure_loop_spec; [destruct max_pressure, pressure; cbn; lia | lia | exact Hpr | exact (given_after good _ _ _ _ _ _ Hk1 Ha) | left; intros ->; cbn in Hpl; lia]. }
  destruct (over_limit size (heap w)).
  - apply pruns_bind. eapply pruns_stops; [| eapply pruns_mono; [apply (pressure_spec M w G extra JMEM_PRESSURE_LOW Hrep); discriminate |]]; [discriminate |].
    intros _ w1 (_ & G1 & Hrep1 & Hk1). apply pruns_ret. cbv beta. apply (Hrest JMEM_PRESSURE_LOW w1 G1 Hrep1 Hk1). lia.
  - apply pruns_ret. cbv beta. apply (Hrest JMEM_PRESSURE_NONE w G Hrep); [apply lowered_refl | cbn; lia].
Qed.
End Pressure.

(** A new cell with its content *)
Definition new_cell (c : cell) (cp : Z) (w : pworld) (G : gmap Z (option Z * chain)) : Prop :=
  cells w !! cp = Some c /\ ~ cp ∈ extra /\ 0 < cp < 536870912 /\ rep_m refs M w G (cp :: extra).

Lemma take_block_spec (f : prop_heap -> option (Z * prop_heap)) c w G : rep_m refs M w G extra -> present w extra ->
  (forall h live p h', holding h live -> f h = Some (p, h') -> holding h' (<[p := cell_size c]> live) /\ live !! p = None /\ 0 < p < 536870912) ->
  pruns False (take_block f c) w (given (new_cell c) w G).
Proof.
  intros Hrep Hpr Hf. unfold take_block, pruns. destruct (f (heap w)) as [[cp heap'] |] eqn:E; [| exists G; split; [apply lowered_refl | exact Hrep]].
  destruct (Hf _ _ _ _ (rep_heap _ _ _ _ _ Hrep) E) as (Hh & Hnew & Hr). rewrite lookup_fmap in Hnew. destruct (cells w !! cp) eqn:Ec; [discriminate |].
  assert (Hx : ~ cp ∈ extra) by (intros H; unfold present in Hpr; rewrite Forall_forall in Hpr; destruct (Hpr cp H); congruence).
  exists G. split; [constructor; [constructor; [apply same_refl | reflexivity |] | auto] | split; [apply lookup_insert_eq | split; [exact Hx | split; [exact Hr | now apply rep_new]]]].
  intros x Hin. apply lookup_insert_ne. now intros ->.
Qed.

Lemma align_cell n : 0 < n < 4294967296 -> jmem_align n <= JMEM_CELLOCATOR_CELL_SIZE <-> n <= JMEM_CELLOCATOR_CELL_SIZE.
Proof.
  intros Hn. unfold jmem_align, JMEM_ALIGNMENT, JMEM_CELLOCATOR_CELL_SIZE, u64. rewrite Z.mod_small by lia. split; intros H; Z.div_mod_to_equations; lia.
Qed.

Lemma heap_alloc_spec c w G : rep_m refs M w G extra -> present w extra -> 0 < cell_size c < 4294967296 ->
  pruns False (jmem_heap_alloc c) w (given (new_cell c) w G).
Proof.
  intros Hrep Hpr Hsize. unfold jmem_heap_alloc. pose proof (align_cell (cell_size c) Hsize) as Ha. destruct (Z.leb_spec (jmem_align (cell_size c)) JMEM_CELLOCATOR_CELL_SIZE) as [Hle | Hgt].
  - assert (Hcell : forall w1 G1, rep_m refs M w1 G1 extra -> lowered w w1 G G1 extra -> pruns False (take_block alloc_cell c) w1 (given (new_cell c) w G)).
    { intros w1 G1 Hrep1 Hk1. eapply pruns_mono; [apply (take_block_spec alloc_cell c w1 G1 Hrep1 (lowered_present _ _ _ _ _ Hk1 Hpr)) |]; [intros h live p h' Hh E; apply (cell_holding h live (cell_size c) p h' Hh); [lia | exact E] |].
      intros r w2 H. exact (given_after _ _ _ _ _ _ _ Hk1 H). }
    apply pruns_bind. eapply pruns_mono; [exact (Hcell w G Hrep (lowered_refl w G extra)) |]. intros [cp |] w1 H1; [exact (pruns_ret _ _ _ _ H1) |]. destruct H1 as (G1 & Hk1 & Hrep1).
    apply pruns_bind. eapply pruns_stops; [| eapply pruns_mono; [apply (pressure_spec M w1 G1 extra JMEM_PRESSURE_LOW Hrep1); discriminate |]]; [discriminate |]. intros _ w2 (_ & G2 & Hrep2 & Hk2). cbv beta.
    assert (Hk : lowered w w2 G G2 extra) by exact (lowered_trans _ _ _ _ _ _ _ Hk1 Hk2).
    apply pruns_bind. eapply pruns_mono; [exact (Hcell w2 G2 Hrep2 Hk) |]. intros [cp |] w3 H3; [exact (pruns_ret _ _ _ _ H3) |]. destruct H3 as (G3 & Hk3 & Hrep3). clear w1 G1 Hk1 Hrep1 w2 G2 Hrep2 Hk2 Hk.
    apply pruns_bind. unfold jmem_cellocator_add_page. eapply pruns_stops; [| eapply pruns_mono; [apply (gc_and_alloc_spec (fun _ w' G' => rep_m refs M w' G' extra) take_page) with (G := G3); [| exact Hrep3 | exact (lowered_present _ _ _ _ _ Hk3 Hpr) | cbn; lia] |]]; [discriminate | |].
    + intros w4 G4 Hrep4 _. unfold take_page, pruns. destruct (alloc_page (heap w4)) as [h |] eqn:E; [| exists G4; split; [apply lowered_refl | exact Hrep4]].
      destruct (rep_heap_only M w4 (set_heap h w4) G4 extra Hrep4) as [Hrep5 Hk5]; try reflexivity; [exact (page_holding _ _ _ (rep_heap _ _ _ _ _ Hrep4) E) |]. exists G4. now split.
    + intros [u |] w4 [(G4 & Hk4 & Hrep4) _]; cbv beta iota; [exact (Hcell w4 G4 Hrep4 (lowered_trans _ _ _ _ _ _ _ Hk3 Hk4)) |]. apply pruns_ret. exists G4. split; [exact (lowered_trans _ _ _ _ _ _ _ Hk3 Hk4) | exact Hrep4].
  - apply take_block_spec; [exact Hrep | exact Hpr |]. intros h live p h' Hh E. apply (region_holding h live (cell_size c) p h' Hh); [lia | exact E].
Qed.
End Alloc.

Definition allocated (w0 : pworld) M (G : gmap Z (option Z * chain)) (extra : list Z) (c : cell) (r : option Z) (w : pworld) : Prop := given M extra (new_cell M extra c) w0 G r w.

Lemma block_spec M w G extra c max_pressure : rep_m refs M w G extra -> present w extra -> 0 < cell_size c < 4294967296 -> pressure_level JMEM_PRESSURE_LOW <= pressure_level max_pressure ->
  pruns (max_pressure = JMEM_PRESSURE_FULL) (jmem_heap_gc_and_alloc_block c max_pressure) w (fun r w' => allocated w M G extra c r w' /\ (max_pressure = JMEM_PRESSURE_FULL -> r <> None)).
Proof.
  intros Hrep Hpr Hsize Hmax. apply (gc_and_alloc_spec M extra (new_cell M extra c)); [| exact Hrep | exact Hpr | exact Hmax]. intros w1 G1 Hrep1 Hpr1. now apply heap_alloc_spec.
Qed.

(** The allocation of a block that the process cannot do without *)
Lemma alloc_block_spec M w G extra c : rep_m refs M w G extra -> present w extra -> 0 < cell_size c < 4294967296 ->
  pruns True (jmem_heap_alloc_block c) w (fun cp w' => allocated w M G extra c (Some cp) w').
Proof.
  intros Hrep Hpr Hpos. unfold jmem_heap_alloc_block. apply pruns_bind. eapply pruns_stops; [| eapply pruns_mono; [apply (block_spec M w G extra c JMEM_PRESSURE_FULL Hrep Hpr Hpos); cbn; lia |]]; [easy |].
  intros r w1 [Ha Hn]. destruct r as [cp |]; [exact Ha | now destruct (Hn eq_refl)].
Qed.
End Memory.
