(* ===== verification/PropCache.v ===== *)
(** * The lookup cache

    The cache of Properties.v has the properties that are marked; what is found in it is
    the property of that name.  Specifications of its three operations: none changes the
    lists. *)
From Stdlib Require Import ZArith Lia Bool List.
From stdpp Require Import base gmap list.
From S2P Require Import Prelude JmemPointers Values Jmem PropNames PropHashmap PropProbing Properties PropState PropMemory.
Import ListNotations.
#[local] Open Scope Z_scope.

(** ** Marks *)

Lemma lcached_bit t : 0 <= t < 256 -> ecma_is_property_lcached t = (t / 16 mod 2 =? 1).
Proof.
  intros Ht. assert (H : forallb (fun k => let t := Z.of_nat k in Bool.eqb (ecma_is_property_lcached t) (t / 16 mod 2 =? 1)) (seq 0 256) = true) by (vm_compute; reflexivity).
  rewrite forallb_forall in H. specialize (H (Z.to_nat t) ltac:(apply in_seq; lia)). cbv zeta in H. rewrite Z2Nat.id in H by lia. now apply Bool.eqb_prop in H.
Qed.

Lemma set_lcached_bit t (b : bool) : 0 <= t < 256 -> ecma_set_property_lcached t b = t - 16 * (t / 16 mod 2) + if b then 16 else 0.
Proof.
  intros Ht. assert (H : forallb (fun k => let t := Z.of_nat k in (ecma_set_property_lcached t true =? t - 16 * (t / 16 mod 2) + 16) && (ecma_set_property_lcached t false =? t - 16 * (t / 16 mod 2) + 0)) (seq 0 256) = true) by (vm_compute; reflexivity).
  rewrite forallb_forall in H. specialize (H (Z.to_nat t) ltac:(apply in_seq; lia)). cbv zeta in H. rewrite Z2Nat.id in H by lia. apply andb_prop in H as [H1 H2]. apply Z.eqb_eq in H1, H2. now destruct b.
Qed.

Section Cache.
Context {PN : PropertyNames} {PH : PropertyHeap}.

Lemma marked_types p (cached : bool) t : prop_ok p -> t = p_flags p + mark cached + 64 * name_type (p_name p) ->
  0 <= t < 256 /\ ecma_is_property_lcached t = cached /\ (forall b, ecma_set_property_lcached t b = p_flags p + mark b + 64 * name_type (p_name p)) /\ ECMA_PROPERTY_GET_NAME_TYPE t = name_type (p_name p).
Proof.
  intros (Hn & Hf & Hlow & _) ->. destruct (name_view (p_name p) Hn) as (Ht & _). assert (Hm : mark cached = 16 * Z.b2z cached) by now destruct cached.
  assert (Hb : 0 <= Z.b2z cached <= 1) by (destruct cached; cbn; lia). set (t := p_flags p + mark cached + 64 * name_type (p_name p)).
  assert (Hr : 0 <= t < 256) by (unfold t; rewrite Hm; Z.div_mod_to_equations; lia).
  assert (E : t / 16 mod 2 = Z.b2z cached) by (unfold t; rewrite Hm; clearbody t; clear Hr; Z.div_mod_to_equations; lia).
  splits; [apply Hr | apply Hr | rewrite lcached_bit, E by exact Hr; now destruct cached | |].
  - intros b. rewrite set_lcached_bit, E by exact Hr. unfold t, mark, ECMA_PROPERTY_FLAG_LCACHED in *. destruct b, cached; cbn [Z.b2z] in *; lia.
  - unfold ECMA_PROPERTY_GET_NAME_TYPE, ECMA_PROPERTY_NAME_TYPE_SHIFT. rewrite Z.shiftr_div_pow2 by lia. change (2 ^ 6) with 64. unfold t. rewrite Hm. Z.div_mod_to_equations; lia.
Qed.

Definition mark_slot (s : slot) (b : bool) : slot := set_types s (ecma_set_property_lcached (types s) b).

Lemma mark_slot_is s p b : prop_ok p -> slot_is s (Some p) -> slot_is (mark_slot s b) (Some p) /\ ecma_is_property_lcached (types (mark_slot s b)) = b.
Proof.
  intros Hp (Hn & Hv & cached & Ht). destruct (marked_types p cached _ Hp Ht) as (_ & _ & Hset & _). cbn. split; [splits; [exact Hn | exact Hv | exists b; apply Hset] |].
  rewrite Hset. now apply (marked_types p b _ Hp).
Qed.

(** Memory with another mark of a property *)
Definition marked (m : gmap Z cell) (q : Z * bool) (b : bool) : gmap Z cell :=
  match m !! q.1 with Some (PAIR x) => <[q.1 := PAIR (set_slot x q.2 (mark_slot (get_slot x q.2) b))]> m | _ => m end.

Lemma get_set_slot x b s c : get_slot (set_slot x b s) c = if Bool.eqb b c then s else get_slot x c.
Proof. now destruct b, c. Qed.

Lemma marked_other m q b cp : cp <> q.1 -> marked m q b !! cp = m !! cp.
Proof. intros Hne. unfold marked. destruct (m !! q.1) as [[] |]; try reflexivity. now apply lookup_insert_ne. Qed.

Lemma marked_size m q b : cell_size <$> marked m q b = cell_size <$> m.
Proof.
  unfold marked. destruct (m !! q.1) as [[x | |] |] eqn:E; try reflexivity. rewrite fmap_insert. apply insert_id. now rewrite lookup_fmap, E.
Qed.

Lemma marked_dom m q b cp x : marked m q b !! cp = Some x -> exists x0, m !! cp = Some x0.
Proof.
  unfold marked. destruct (m !! q.1) as [[y | |] |] eqn:E; eauto. intros H. apply lookup_insert_Some in H as [[<- _] | [_ H]]; eauto.
Qed.

(** A property of the lists, in memory *)
Definition in_memory (m : gmap Z cell) (q : Z * bool) (p : prop) : Prop := exists x, m !! q.1 = Some (PAIR x) /\ slot_is (get_slot x q.2) (Some p).

Lemma cached_marked m q b p q' : prop_ok p -> in_memory m q p -> cached_at (marked m q b) q' = if bool_decide (q' = q) then b else cached_at m q'.
Proof.
  intros Hp (x & Hx & Hs). unfold cached_at, marked. rewrite Hx. case_bool_decide as Heq.
  - subst q'. rewrite lookup_insert_eq, get_set_slot, Bool.eqb_reflx. now apply (mark_slot_is _ p).
  - destruct (decide (q'.1 = q.1)) as [E | Hne]; [| now rewrite lookup_insert_ne by congruence]. rewrite E, lookup_insert_eq, Hx, get_set_slot.
    destruct (Bool.eqb q.2 q'.2) eqn:Eb; [| reflexivity]. apply Bool.eqb_prop in Eb. destruct Heq. destruct q, q'. cbn in *. congruence.
Qed.

Lemma memory_marked m q b p q' p' : prop_ok p -> in_memory m q p -> prop_ok p' -> in_memory m q' p' -> in_memory (marked m q b) q' p'.
Proof.
  intros Hp (x & Hx & Hs) Hp' (x' & Hx' & Hs'). unfold in_memory, marked. rewrite Hx. destruct (decide (q'.1 = q.1)) as [E | Hne].
  - rewrite E in *. rewrite Hx in Hx'. injection Hx' as <-. exists (set_slot x q.2 (mark_slot (get_slot x q.2) b)). split; [apply lookup_insert_eq |]. rewrite get_set_slot.
    destruct (Bool.eqb q.2 q'.2) eqn:Eb; [| exact Hs']. apply Bool.eqb_prop in Eb. rewrite Eb. now apply mark_slot_is.
  - exists x'. split; [| exact Hs']. now rewrite lookup_insert_ne by congruence.
Qed.

Lemma mark_run q b p w : in_memory (cells w) q p -> (s ← get_property q; put_property q (mark_slot s b)) w = PDONE _ tt (set_cells (marked (cells w) q b) w).
Proof.
  intros (x & Hx & _). unfold mbind, P_bind, get_property, put_property, mbind, P_bind, get_pair, put_pair, mret, P_ret. rewrite Hx. unfold mret, P_ret. rewrite Hx. unfold marked. now rewrite Hx.
Qed.

Lemma invalidate_run e p w : in_memory (cells w) (prop_p e) p -> ecma_lcache_invalidate_entry e w = PDONE _ (mk_entry (prop_p e) 0) (set_cells (marked (cells w) (prop_p e) false) w).
Proof.
  intros (x & Hx & _). unfold ecma_lcache_invalidate_entry, mbind, P_bind, get_property, put_property, mbind, P_bind, get_pair, put_pair, mret, P_ret. rewrite Hx. unfold mret, P_ret. rewrite Hx. unfold marked. now rewrite Hx.
Qed.

Context (refs : Z -> bool).

Section Rep.
Context (M : maps) (w : pworld) (G : gmap Z (option Z * chain)) (extra : list Z) (Hrep : rep_m refs M w G extra).

Lemma list_memory o g q p : G !! o = Some g -> prop_at g.2 q = Some p -> in_memory (cells w) q p /\ prop_ok p.
Proof.
  intros Hg Hp. destruct (rep_list _ _ _ _ _ Hrep o g Hg) as (ob & _ & [Hl _]). destruct (rep_nodup _ _ _ _ _ Hrep o g Hg) as [_ Hok]. split; [| exact (chain_prop_ok _ _ _ Hok Hp)].
  assert (Hhead : exists head, linked (cells w) head g.2) by (destruct g as [[c |] l]; cbn [fst snd] in *; [destruct Hl as (_ & _ & h & _ & Hl & _) |]; eauto). destruct Hhead as [head Hlinked].
  unfold prop_at in Hp. destruct (pair_in g.2 q.1) as [a |] eqn:Ea; [| discriminate]. destruct (linked_pair _ _ _ _ _ Hlinked Ea) as (x & Hx & Hxa). exists x. split; [exact Hx |].
  destruct Hxa as [H0 H1]. destruct q as [cp []]; cbn in *; now rewrite Hp in *.
Qed.

Lemma cps_cell o (g : option Z * chain) c : c ∈ cps g.2 -> c ∈ cells_of refs o g.
Proof. intros H. unfold cells_of. apply elem_of_app. right. apply elem_of_app. now left. Qed.

Lemma prop_owner o g o' g' q p p' : G !! o = Some g -> prop_at g.2 q = Some p -> G !! o' = Some g' -> prop_at g'.2 q = Some p' -> o' = o /\ p' = p.
Proof.
  intros Hg Hp Hg' Hp'. assert (E : o' = o) by (apply (rep_apart _ _ _ _ _ Hrep o' o g' g q.1 Hg' Hg); apply cps_cell; [exact (prop_at_cps _ _ _ Hp') | exact (prop_at_cps _ _ _ Hp)]).
  subst o'. rewrite Hg in Hg'. injection Hg' as <-. split; [reflexivity | congruence].
Qed.

(** The lists stand for the same with other marks *)
Lemma rep_mark o g q p b rows : G !! o = Some g -> prop_at g.2 q = Some p -> cache_ok (marked (cells w) q b) rows G ->
  rep_m refs M (set_lcache rows (set_cells (marked (cells w) q b) w)) G extra /\ kept w (set_lcache rows (set_cells (marked (cells w) q b) w)) G G extra.
Proof.
  intros Hg Hp Hcache. destruct (list_memory o g q p Hg Hp) as [Hmem Hok]. pose proof (prop_at_cps _ _ _ Hp) as Hcp. pose proof (cps_cell o g q.1 Hcp) as Hin.
  assert (Hother : forall c, c <> q.1 -> marked (cells w) q b !! c = cells w !! c) by (intros c; apply marked_other).
  split; [| constructor; [apply same_refl | reflexivity | intros c Hc; apply Hother; intros ->; exact (rep_extra _ _ _ _ _ Hrep o g q.1 Hg Hin Hc)]].
  destruct (rep_list _ _ _ _ _ Hrep o g Hg) as (ob & Ho & [Hl Ha]). destruct (rep_nodup _ _ _ _ _ Hrep o g Hg) as [Hnd Hch]. rewrite <- (insert_id G o g Hg).
  destruct Hmem as (x & Hx & Hs). unfold prop_at in Hp. destruct (pair_in g.2 q.1) as [a |] eqn:Ea; [| discriminate].
  assert (Hcps : NoDup (cps g.2)) by (unfold cells_of in Hnd; apply NoDup_app in Hnd as (_ & _ & Hnd); now apply NoDup_app in Hnd).
  assert (Em : marked (cells w) q b = <[q.1 := PAIR (set_slot x q.2 (mark_slot (get_slot x q.2) b))]> (cells w)) by (unfold marked; now rewrite Hx).
  assert (Hlinked : forall head, linked (cells w) head g.2 -> linked (marked (cells w) q b) head g.2).
  { intros head H. destruct (linked_pair _ _ _ _ _ H Ea) as (x0 & Hx0 & H0 & H1). rewrite Hx in Hx0. injection Hx0 as <-. rewrite Em, <- (put_same g.2 q.1 a Hcps Ea).
    apply (linked_put _ _ x); [exact H | exact Hcps | exact Hx | now destruct q as [? []] |]. destruct (mark_slot_is _ p b Hok Hs) as [Hmark _].
    split; destruct q as [cp []]; cbn in *; try assumption; now rewrite Hp. }
  apply (list_change refs M M w _ G o g g extra extra ob); cbn [heap cells objects lcache set_lcache set_cells]; try assumption.
  - rewrite marked_size. exact (rep_heap _ _ _ _ _ Hrep).
  - split.
    + destruct g as [[c |] l]; cbn [fst snd] in *; [| now apply Hlinked]. destruct Hl as (-> & Hc & h & Hh & Hl & Hm). splits; [reflexivity | exact Hc |]. exists h.
      splits; [rewrite Hother; [exact Hh |] | now apply Hlinked | exact Hm]. intros ->. cbn [cells_of option_list fst] in Hnd. change (NoDup (q.1 :: (cps l ++ accs (refs o) l))) in Hnd.
      apply NoDup_cons in Hnd as [N _]. apply N, elem_of_app. now left.
    + unfold accs_in in *. rewrite Forall_forall in *. intros c Hc. rewrite Hother; [now apply Ha |]. intros ->. unfold cells_of in Hnd. apply NoDup_app in Hnd as (_ & _ & Hnd). apply NoDup_app in Hnd as (_ & N & _).
      now apply (N q.1).
  - intros o' _. split; reflexivity.
  - intros c Hc _. apply Hother. now intros ->.
  - intros c y H. split; [exact (marked_dom _ _ _ _ _ H) | tauto].
  - tauto.
  - intros c Hc. exact (rep_extra _ _ _ _ _ Hrep o g c Hg Hc).
  - now rewrite insert_id.
Qed.

(** ** Rows *)

Lemma cache_row_change m m' rows r row row' : cache_ok m rows G -> rows !! r = Some row -> length row' = Z.to_nat ECMA_LCACHE_HASH_ROW_LENGTH ->
  NoDup (map prop_p (filter (fun e => entry_used e = true) row')) ->
  (forall e, e ∈ row' -> entry_used e = true -> exists o g p, G !! o = Some g /\ prop_at g.2 (prop_p e) = Some p /\ id e = cache_id o p /\ r = cache_row o p /\ cached_at m' (prop_p e) = true) ->
  (forall o g q p, G !! o = Some g -> prop_at g.2 q = Some p -> cache_row o p <> r -> cached_at m' q = cached_at m q) ->
  (forall o g q p, G !! o = Some g -> prop_at g.2 q = Some p -> cache_row o p = r -> cached_at m' q = true -> exists e, e ∈ row' /\ entry_used e = true /\ prop_p e = q) ->
  cache_ok m' (<[r := row']> rows) G.
Proof.
  intros [H1 H2 Hsound Hcomplete Honce] Hrow Hlen Hnd Hs Hm Hc. assert (Hr : (r < length rows)%nat) by (eapply lookup_lt_Some; exact Hrow). constructor.
  - now rewrite length_insert.
  - now apply Forall_insert.
  - intros r' row0 e H He Hu. destruct (decide (r' = r)) as [-> | Hne].
    + rewrite list_lookup_insert_eq in H by exact Hr. injection H as <-. now apply Hs.
    + rewrite list_lookup_insert_ne in H by congruence. destruct (Hsound r' row0 e H He Hu) as (o & g & p & Hg & Hp & Hid & Er & Hca). exists o, g, p. splits; try assumption. rewrite (Hm o g _ p); congruence.
  - intros o g q p Hg Hp Hca. destruct (decide (cache_row o p = r)) as [E | Hne].
    + destruct (Hc o g q p Hg Hp E Hca) as (e & He). exists row', e. rewrite E, list_lookup_insert_eq by exact Hr. now split.
    + rewrite list_lookup_insert_ne by congruence. apply (Hcomplete o g q p Hg Hp). now rewrite <- (Hm o g q p).
  - intros r' row0 H. destruct (decide (r' = r)) as [-> | Hne]; [rewrite list_lookup_insert_eq in H by exact Hr; injection H as <-; exact Hnd | rewrite list_lookup_insert_ne in H by congruence; now apply (Honce r')].
Qed.

Lemma cache_row_range o p : Z.of_nat (cache_row o p) < 128.
Proof.
  unfold cache_row, ecma_lcache_row_index, ECMA_LCACHE_HASH_MASK. change ECMA_LCACHE_HASH_BITSHIFT_INDEX with 6. set (x := Z.lxor _ _). rewrite land_shifted by lia.
  rewrite Z.shiftr_shiftl_l by lia. rewrite Z.sub_diag, Z.shiftl_0_r. rewrite (land_ones' _ 7) by (reflexivity || lia). change (2 ^ 7) with 128.
  pose proof (Z.mod_pos_bound (Z.shiftr x 6) 128). lia.
Qed.

Lemma create_id_sum o v : 0 <= o < B32 -> 0 <= v < B32 -> ECMA_LCACHE_CREATE_ID o v = o * B32 + v.
Proof.
  intros Ho Hv. unfold ECMA_LCACHE_CREATE_ID, ECMA_LCACHE_HASH_ENTRY_ID_SHIFT. change (8 * 4) with 32. rewrite Z.shiftl_mul_pow2 by lia. change (2 ^ 32) with B32. unfold u64. rewrite Z.mod_small by lia.
  change B32 with (2 ^ 32). now rewrite lor_mul_low by lia.
Qed.

(** The row of a property: two entries *)
Lemma the_row o p : exists a b, lcache w !! cache_row o p = Some [a; b].
Proof.
  destruct (rep_cache _ _ _ _ _ Hrep) as [H1 H2 _ _ _]. pose proof (cache_row_range o p) as Hr. change (Z.to_nat ECMA_LCACHE_HASH_ROWS_COUNT) with 128%nat in H1.
  destruct (lookup_lt_is_Some_2 (lcache w) (cache_row o p) ltac:(lia)) as [row E]. pose proof (proj1 (Forall_forall _ _) H2 row (list_elem_of_lookup_2 _ _ _ E)) as Hlen.
  destruct row as [| a [| b [| ? ?]]]; try discriminate. now exists a, b.
Qed.

Lemma used_iff e : entry_used e = true <-> id e <> 0.
Proof. unfold entry_used. now rewrite negb_true_iff, Z.eqb_neq. Qed.

Lemma unused_iff e : entry_used e = false <-> id e = 0.
Proof. unfold entry_used. now rewrite negb_false_iff, Z.eqb_eq. Qed.

Lemma filter_two (P : ecma_lcache_hash_entry_t -> bool) a b : filter (fun e => P e = true) [a; b] = (if P a then [a] else []) ++ (if P b then [b] else []).
Proof. cbn. destruct (decide (P a = true)) as [-> | Ha], (decide (P b = true)) as [-> | Hb]; try apply not_true_is_false in Ha as ->; try apply not_true_is_false in Hb as ->; reflexivity. Qed.

Lemma used_once a b : NoDup (map prop_p (filter (fun e => entry_used e = true) [a; b])) <-> (entry_used a = true -> entry_used b = true -> prop_p a <> prop_p b).
Proof.
  rewrite filter_two. destruct (entry_used a), (entry_used b); cbn; (split; [| intros H; first [apply NoDup_nil_2 | apply NoDup_singleton | idtac]]); try easy.
  - intros H _ _ E. rewrite E in H. apply NoDup_cons in H as [H _]. apply H. left.
  - apply NoDup_cons. split; [intros E; apply list_elem_of_singleton in E; now apply (H eq_refl eq_refl) | apply NoDup_singleton].
Qed.

(** A property and its entry *)
Lemma cache_new_entry o g q p x y z u v : G !! o = Some g -> prop_at g.2 q = Some p -> cached_at (cells w) q = false -> lcache w !! cache_row o p = Some [x; y] ->
  (z = x /\ id y = 0) \/ (z = y /\ id x = 0) -> (u = mk_entry q (cache_id o p) /\ v = z) \/ (u = z /\ v = mk_entry q (cache_id o p)) ->
  cache_ok (marked (cells w) q true) (<[cache_row o p := [u; v]]> (lcache w)) G.
Proof.
  intros Hg Hp Hc Hrow Hz Huv. pose proof (rep_cache _ _ _ _ _ Hrep) as Hcache. destruct (list_memory o g q p Hg Hp) as [Hmem Hok]. set (e := mk_entry q (cache_id o p)) in *.
  assert (Hin : forall e0, e0 ∈ [u; v] <-> e0 = e \/ e0 = z) by (intros e0; rewrite elem_of_cons, list_elem_of_singleton; destruct Huv as [[-> ->] | [-> ->]]; tauto).
  assert (Hzrow : z ∈ [x; y]) by (destruct Hz as [[-> _] | [-> _]]; [left | right; left]).
  assert (Hsound := cache_sound _ _ _ Hcache _ _ z Hrow Hzrow).
  assert (Hzq : entry_used z = true -> prop_p z <> q) by (intros Hu E; destruct (Hsound Hu) as (o' & g' & p' & _ & _ & _ & _ & Hca); congruence).
  assert (Hmark : forall q', cached_at (marked (cells w) q true) q' = if bool_decide (q' = q) then true else cached_at (cells w) q') by (intros q'; now apply (cached_marked _ _ _ p)).
  apply (cache_row_change (cells w) _ (lcache w) _ [x; y]); [exact Hcache | exact Hrow | reflexivity | | | |].
  - apply used_once. destruct Huv as [[-> ->] | [-> ->]]; cbn [prop_p e]; intros H1 H2; [intros E; now apply Hzq | now apply Hzq].
  - intros e0 He Hu. apply Hin in He as [-> | ->].
    + exists o, g, p. splits; try assumption; try reflexivity. cbn [prop_p e]. now rewrite Hmark, bool_decide_true.
    + destruct (Hsound Hu) as (o' & g' & p' & Hg' & Hp' & Hid & Hr & Hca). exists o', g', p'. splits; try assumption. rewrite Hmark. now case_bool_decide.
  - intros o' g' q' p' Hg' Hp' Hr. rewrite Hmark. case_bool_decide as E; [| reflexivity]. subst q'. destruct (prop_owner o g o' g' q p p' Hg Hp Hg' Hp') as [-> ->]. now destruct Hr.
  - intros o' g' q' p' Hg' Hp' Hr. rewrite Hmark. case_bool_decide as E; intros Hca.
    + exists e. subst q'. splits; [apply Hin; now left | | reflexivity]. apply used_iff. cbn [id e]. unfold cache_id. pose proof (rep_objects _ _ _ _ _ Hrep o g Hg) as Ho.
      destruct (name_view (p_name p) (proj1 Hok)) as (_ & _ & Hv & _). rewrite create_id_sum by lia. lia.
    + destruct (cache_complete _ _ _ Hcache o' g' q' p' Hg' Hp' Hca) as (row & e0 & Hrow0 & He0 & Hu & Hq). rewrite Hr, Hrow in Hrow0. injection Hrow0 as <-. exists e0. splits; [| exact Hu | exact Hq].
      apply Hin. right. apply used_iff in Hu. apply elem_of_cons in He0 as [-> | He0]; [| apply list_elem_of_singleton in He0 as ->]; destruct Hz as [[-> E1] | [-> E1]]; congruence.
Qed.

Lemma cache_drop_entry o g q p e x y : G !! o = Some g -> prop_at g.2 q = Some p -> lcache w !! cache_row o p = Some [x; y] -> entry_used e = true -> prop_p e = q ->
  forall u v, (e = x /\ u = mk_entry q 0 /\ v = y) \/ (e = y /\ u = x /\ v = mk_entry q 0) ->
  cache_ok (marked (cells w) q false) (<[cache_row o p := [u; v]]> (lcache w)) G.
Proof.
  intros Hg Hp Hrow He Hq u v Huv. pose proof (rep_cache _ _ _ _ _ Hrep) as Hcache. destruct (list_memory o g q p Hg Hp) as [Hmem Hok].
  pose proof (proj1 (used_once x y) (cache_once _ _ _ Hcache _ _ Hrow)) as Honce.
  assert (Hmark : forall q', cached_at (marked (cells w) q false) q' = if bool_decide (q' = q) then false else cached_at (cells w) q') by (intros q'; now apply (cached_marked _ _ _ p)).
  assert (Hkeep : forall e0, e0 ∈ [u; v] -> entry_used e0 = true -> e0 ∈ [x; y] /\ prop_p e0 <> q).
  { intros e0 H Hu. apply elem_of_cons in H. rewrite list_elem_of_singleton in H.
    destruct Huv as [(-> & -> & ->) | (-> & -> & ->)]; destruct H as [-> | ->]; try discriminate; (split; [(left; fail) || (right; left) || left |]); intros E; apply Honce; congruence. }
  apply (cache_row_change (cells w) _ (lcache w) _ [x; y]); [exact Hcache | exact Hrow | reflexivity | | | |].
  - apply used_once. intros H1 H2. destruct Huv as [(-> & -> & ->) | (-> & -> & ->)]; discriminate.
  - intros e0 H Hu. destruct (Hkeep e0 H Hu) as [Hin Hne]. destruct (cache_sound _ _ _ Hcache _ _ e0 Hrow Hin Hu) as (o' & g' & p' & Hg' & Hp' & Hid & Hr & Hca).
    exists o', g', p'. splits; try assumption. rewrite Hmark. now rewrite bool_decide_false.
  - intros o' g' q' p' Hg' Hp' Hr. rewrite Hmark. case_bool_decide as E; [| reflexivity]. subst q'. destruct (prop_owner o g o' g' q p p' Hg Hp Hg' Hp') as [-> ->]. now destruct Hr.
  - intros o' g' q' p' Hg' Hp' Hr. rewrite Hmark. case_bool_decide as E; [discriminate |]. intros Hca.
    destruct (cache_complete _ _ _ Hcache o' g' q' p' Hg' Hp' Hca) as (row & e0 & Hrow0 & He0 & Hu & Hq0). rewrite Hr, Hrow in Hrow0. injection Hrow0 as <-. exists e0. splits; [| exact Hu | exact Hq0].
    apply elem_of_cons in He0. rewrite list_elem_of_singleton in He0. apply elem_of_cons. rewrite list_elem_of_singleton. destruct Huv as [(-> & -> & ->) | (-> & -> & ->)]; destruct He0 as [-> | ->]; auto; congruence.
Qed.

(** ** Lookup *)

Lemma lookup_row_run o g np : is_name np -> G !! o = Some g -> forall row, (forall e, e ∈ row -> exists r row, lcache w !! r = Some row /\ e ∈ row) ->
  exists r, lookup_row row (ECMA_LCACHE_CREATE_ID o (name_value np)) (name_type np) w = PDONE _ r w /\ match r with None => True | Some q => exists p, prop_at g.2 q = Some p /\ p_name p = np end.
Proof.
  intros Hnp Hg. pose proof (rep_objects _ _ _ _ _ Hrep o g Hg) as Ho. destruct (name_view np Hnp) as (_ & _ & Hv & _).
  induction row as [| e row IH]; intros Hrow; cbn [lookup_row]; [now exists None |]. destruct IH as (r & Er & Hr); [intros e0 H; apply Hrow; now right |].
  destruct (Z.eqb_spec (id e) (ECMA_LCACHE_CREATE_ID o (name_value np))) as [Eid | _]; [| now exists r]. rewrite create_id_sum in Eid by lia.
  destruct (Hrow e ltac:(left)) as (ri & row0 & Hrow0 & He). destruct (cache_sound _ _ _ (rep_cache _ _ _ _ _ Hrep) ri row0 e Hrow0 He) as (o' & g' & p & Hg' & Hp & Hid & _); [apply used_iff; lia |].
  pose proof (rep_objects _ _ _ _ _ Hrep o' g' Hg') as Ho'. destruct (list_memory o' g' _ p Hg' Hp) as [(x & Hx & _ & _ & cached & Ht) Hok]. destruct (name_view (p_name p) (proj1 Hok)) as (_ & _ & Hv' & _).
  unfold cache_id in Hid. rewrite create_id_sum in Hid by lia. assert (E : o' = o /\ name_value (p_name p) = name_value np) by (split; nia). destruct E as [-> Ev]. rewrite Hg in Hg'. injection Hg' as <-.
  unfold mbind, P_bind, get_property, mbind, P_bind, get_pair. rewrite Hx. cbn [mret P_ret]. unfold mret, P_ret. destruct (marked_types p cached _ Hok Ht) as (_ & _ & _ & ->).
  destruct (Z.eqb_spec (name_type (p_name p)) (name_type np)) as [Et | _]; [| now exists r]. exists (Some (prop_p e)). split; [reflexivity |]. exists p. split; [exact Hp |].
  rewrite <- (from_to_name 0 (p_name p) (proj1 Hok)), <- (from_to_name 0 np Hnp) by lia. now rewrite Ev, Et.
Qed.

Lemma lookup_spec o g np : is_name np -> G !! o = Some g ->
  exists r, ecma_lcache_lookup o np w = PDONE _ r w /\ match r with None => True | Some q => exists p, prop_at g.2 q = Some p /\ p_name p = np end.
Proof.
  intros Hnp Hg. unfold ecma_lcache_lookup.
  replace (if ECMA_IS_DIRECT_STRING np then (ECMA_GET_DIRECT_STRING_TYPE np, u32 (ECMA_GET_DIRECT_STRING_VALUE np)) else (ECMA_DIRECT_STRING_PTR, jmem_compress_pointer 32 np))
    with (name_type np, name_value np) by (unfold name_type, name_value; now destruct (ECMA_IS_DIRECT_STRING np)).
  destruct (the_row o (mk_prop np 0 0)) as (a & b & Hrow). unfold cache_row in Hrow. cbn [p_name] in Hrow.
  destruct (lookup_row_run o g np Hnp Hg [a; b]) as (r & Er & Hr); [intros e He; now exists (Z.to_nat (ecma_lcache_row_index o (name_value np))), [a; b] |].
  exists r. split; [| exact Hr]. unfold mbind, P_bind, get_row. rewrite Hrow. exact Er.
Qed.
End Rep.

(** ** Registration *)

Lemma lcache_insert_spec M w G extra o g q p : rep_m refs M w G extra -> G !! o = Some g -> prop_at g.2 q = Some p -> cached_at (cells w) q = false ->
  pruns False (ecma_lcache_insert o (name_value (p_name p)) q) w (fun _ w' => rep_m refs M w' G extra /\ kept w w' G G extra).
Proof.
  intros Hrep Hg Hp Hc. destruct (list_memory M w G extra Hrep o g q p Hg Hp) as [Hmem Hok]. destruct (the_row M w G extra Hrep o p) as (a & b & Hrow).
  set (e := mk_entry q (cache_id o p)). unfold ecma_lcache_insert. eapply pruns_done; [unfold get_row; fold (cache_row o p); rewrite Hrow; reflexivity |].
  change (mk_entry q (ECMA_LCACHE_CREATE_ID o (name_value (p_name p)))) with e. cbn [take_free].
  assert (Hdone : forall z u v, (z = a /\ id b = 0) \/ (z = b /\ id a = 0) -> (u = e /\ v = z) \/ (u = z /\ v = e) ->
    pruns False (put_row (ecma_lcache_row_index o (name_value (p_name p))) [u; v];; s ← get_property q; put_property q (set_types s (ecma_set_property_lcached (types s) true))) w (fun _ w' => rep_m refs M w' G extra /\ kept w w' G G extra)).
  { intros z u v Hz Huv. eapply pruns_done; [reflexivity |]. eapply pruns_final; [exact (mark_run q true p (set_lcache _ w) Hmem) |].
    apply (rep_mark M w G extra Hrep o g q p true (<[cache_row o p := [u; v]]> (lcache w)) Hg Hp). exact (cache_new_entry M w G extra Hrep o g q p a b z u v Hg Hp Hc Hrow Hz Huv). }
  destruct (Z.eqb_spec (id a) 0) as [Ea | Ea]; [apply (Hdone b); auto |]. destruct (Z.eqb_spec (id b) 0) as [Eb | Eb]; cbn [option_map]; [apply (Hdone a); auto |]. clear Hdone.
  cbn [last removelast]. apply pruns_bind.
  (* the last entry is dropped *)
  assert (Hb : entry_used b = true) by now apply used_iff.
  destruct (cache_sound _ _ _ (rep_cache _ _ _ _ _ Hrep) _ _ b Hrow ltac:(right; left) Hb) as (ob & gb & pb & Hgb & Hpb & _ & Hrb & _).
  destruct (list_memory M w G extra Hrep ob gb _ pb Hgb Hpb) as [Hmemb Hokb]. eapply pruns_done; [exact (invalidate_run b pb w Hmemb) |].
  pose proof Hrow as Hrow'. rewrite Hrb in Hrow'.
  pose proof (cache_drop_entry M w G extra Hrep ob gb (prop_p b) pb b a b Hgb Hpb Hrow' Hb eq_refl a (mk_entry (prop_p b) 0) ltac:(right; auto)) as Hcache1.
  destruct (rep_mark M w G extra Hrep ob gb (prop_p b) pb false _ Hgb Hpb Hcache1) as [Hrep1 Hk1]. rewrite <- Hrb in Hrep1, Hk1. set (w1 := set_lcache _ _) in Hrep1, Hk1.
  assert (Hc1 : cached_at (cells w1) q = false) by (cbn [w1 cells set_lcache set_cells]; rewrite (cached_marked _ _ _ pb) by assumption; now case_bool_decide).
  assert (Hrow1 : lcache w1 !! cache_row o p = Some [a; mk_entry (prop_p b) 0]) by (cbn [w1 lcache set_lcache set_cells]; apply list_lookup_insert_eq; eapply lookup_lt_Some; exact Hrow).
  pose proof (cache_new_entry M w1 G extra Hrep1 o g q p _ _ a e a Hg Hp Hc1 Hrow1 ltac:(auto) ltac:(auto)) as Hcache2. cbn [w1 lcache set_lcache set_cells] in Hcache2. rewrite list_insert_insert_eq in Hcache2.
  destruct (rep_mark M w1 G extra Hrep1 o g q p true _ Hg Hp Hcache2) as [Hrep2 Hk2].
  eapply pruns_final; [reflexivity |]. cbv beta. destruct (list_memory M w1 G extra Hrep1 o g q p Hg Hp) as [Hmem1 _].
  eapply pruns_final; [refine (mark_run q true p _ _); exact Hmem1 |]. split; [exact Hrep2 | exact (kept_steps _ _ _ _ _ _ _ Hk1 Hk2)].
Qed.

Lemma lcache_invalidate_spec M w G extra o g q p : rep_m refs M w G extra -> G !! o = Some g -> prop_at g.2 q = Some p -> cached_at (cells w) q = true ->
  exists rows, ecma_lcache_invalidate o (name_value (p_name p)) q w = PDONE _ tt (set_lcache rows (set_cells (marked (cells w) q false) w)) /\ cache_ok (marked (cells w) q false) rows G.
Proof.
  intros Hrep Hg Hp Hc. destruct (list_memory M w G extra Hrep o g q p Hg Hp) as [Hmem Hok]. destruct (the_row M w G extra Hrep o p) as (a & b & Hrow).
  destruct (cache_complete _ _ _ (rep_cache _ _ _ _ _ Hrep) o g q p Hg Hp Hc) as (row & e & Hrow0 & He & Hu & Hq). rewrite Hrow in Hrow0. injection Hrow0 as <-.
  unfold ecma_lcache_invalidate, mbind, P_bind, get_row. fold (cache_row o p). rewrite Hrow. cbn [invalidate_in]. pose proof (proj1 (used_iff e) Hu) as Hid.
  assert (Et : negb (id e =? 0) && bool_decide (prop_p e = q) = true) by (rewrite bool_decide_true by exact Hq; now rewrite (proj2 (Z.eqb_neq _ _) Hid)).
  destruct (negb (id a =? 0) && bool_decide (prop_p a = q)) eqn:Ea.
  - apply andb_prop in Ea as [Ea1 Ea2]. apply bool_decide_eq_true in Ea2. exists (<[cache_row o p := [mk_entry q 0; b]]> (lcache w)). split.
    + unfold mbind, P_bind. rewrite (invalidate_run a p w) by (rewrite Ea2; exact Hmem). rewrite Ea2. reflexivity.
    + apply (cache_drop_entry M w G extra Hrep o g q p a a b Hg Hp Hrow Ea1 Ea2). now left.
  - apply elem_of_cons in He as [-> | He]; [congruence |]. apply list_elem_of_singleton in He as ->. rewrite Et. exists (<[cache_row o p := [a; mk_entry q 0]]> (lcache w)). split.
    + unfold mbind, P_bind. rewrite (invalidate_run b p w) by (rewrite Hq; exact Hmem). rewrite Hq. reflexivity.
    + apply (cache_drop_entry M w G extra Hrep o g q p b a b Hg Hp Hrow Hu Hq). now right.
Qed.
End Cache.
