(* ===== verification/PropMap.v ===== *)
(** * The hash map of an object

    The hash map that is created for a list has the properties of the list; it follows
    the insertion of a property and its deletion, and finds the property of a name. *)
From Stdlib Require Import ZArith Lia Bool List.
From stdpp Require Import base gmap list.
From S2P Require Import Prelude JmemPointers Values Jmem PropNames PropHashmap PropProbing Properties PropState PropMemory PropCache.
Import ListNotations.
#[local] Open Scope Z_scope.

Section Map.
Context {PN : PropertyNames} {PH : PropertyHeap}.

(** ** Names in memory *)

Lemma key_name p k : key p = Some k -> key_of (p_name p) = Some k.
Proof. exact (fun H => H). Qed.

Lemma prop_key p : prop_ok p -> exists k, key p = Some k.
Proof. intros [H _]. exact H. Qed.

Lemma slot_hash_is s p : prop_ok p -> slot_is s (Some p) -> ecma_string_get_property_name_hash (types s) (names_cp s) = prop_hash p.
Proof.
  intros Hp Hs. destruct (slot_type s p Hp Hs) as (flags & Hf & Et & _). destruct Hs as (-> & _ & _). rewrite Et. apply name_hash; [apply Hp | exact Hf].
Qed.

Lemma prop_hash_range p : prop_ok p -> 0 <= prop_hash p.
Proof. intros [H _]. pose proof (hash_u32 _ H) as Hu. unfold is_u32 in Hu. unfold prop_hash. lia. Qed.

Lemma slot_named s p : prop_ok p -> slot_is s (Some p) -> types s =? ECMA_PROPERTY_TYPE_DELETED = false.
Proof.
  intros Hp Hs. destruct (slot_type s p Hp Hs) as (flags & Hf & -> & Hsp). apply Z.eqb_neq. change ECMA_PROPERTY_TYPE_DELETED with 200. change ECMA_DIRECT_STRING_SPECIAL with 3 in Hsp.
  destruct (name_view (p_name p) (proj1 Hp)) as (Ht & _). lia.
Qed.

(** The tests of the two loops *)
Lemma slot_matches_prop s p np k : prop_ok p -> slot_is s (Some p) -> key_of np = Some k -> slot_matches np s = bool_decide (key p = Some k).
Proof.
  intros Hp Hs Hk. destruct (prop_key p Hp) as [kp Hkp]. pose proof Hs as (Hn & _ & cached & Ht). destruct (marked_types p cached _ Hp Ht) as (_ & _ & _ & Etype). unfold slot_matches. rewrite Hn, Etype.
  assert (Nnp : is_name np) by now exists k. pose proof (proj1 Hp) as Np. destruct (name_view np Nnp) as (_ & _ & Hv & Hnp), (name_view (p_name p) Np) as (_ & _ & Hvp & Hdp).
  destruct (ECMA_IS_DIRECT_STRING np) eqn:Ed.
  - assert (Ev : u32 (ECMA_GET_DIRECT_STRING_VALUE np) = name_value np) by (unfold name_value; now rewrite Ed). assert (Et : ECMA_GET_DIRECT_STRING_TYPE np = name_type np) by (unfold name_type; now rewrite Ed). rewrite Ev, Et.
    case_bool_decide as E.
    + assert (p_name p = np) as -> by (apply (direct_unique np (p_name p) k Hk E Ed)). now rewrite !Z.eqb_refl.
    + apply andb_false_iff. destruct (Z.eqb_spec (name_value (p_name p)) (name_value np)) as [E1 |]; [right | now left]. apply Z.eqb_neq. intros E2. apply E.
      assert (p_name p = np) as E3 by (rewrite <- (from_to_name 0 (p_name p) Np), <- (from_to_name 0 np Nnp) by lia; now rewrite E1, E2). unfold key. now rewrite E3.
  - destruct (ECMA_IS_DIRECT_STRING (p_name p)) eqn:Edp.
    + destruct Hdp as (H1 & _). rewrite (proj2 (Z.eqb_neq _ _)) by (unfold ECMA_DIRECT_STRING_PTR; lia). cbn [andb]. rewrite bool_decide_false; [reflexivity |]. intros E.
      rewrite (direct_unique (p_name p) np k E Hk Edp) in Ed. congruence.
    + destruct Hdp as (-> & ->). change (0 =? ECMA_DIRECT_STRING_PTR) with true. cbn [andb]. rewrite (compare_keys (p_name p) np kp k Hkp Hk Edp Ed), Hkp.
      apply bool_decide_ext. split; [now intros -> | congruence].
Qed.

Lemma slot_matches_none s np : is_name np -> slot_is s None -> slot_matches np s = false.
Proof.
  intros Hnp [Ht Hn]. unfold slot_matches. rewrite Ht, Hn. change (ECMA_PROPERTY_GET_NAME_TYPE ECMA_PROPERTY_TYPE_DELETED) with 3. destruct (name_view np Hnp) as (_ & _ & Hv & Hd). destruct (ECMA_IS_DIRECT_STRING np) eqn:Ed; [| reflexivity].
  assert (Ev : u32 (ECMA_GET_DIRECT_STRING_VALUE np) = name_value np) by (unfold name_value; now rewrite Ed). assert (Et : ECMA_GET_DIRECT_STRING_TYPE np = name_type np) by (unfold name_type; now rewrite Ed). rewrite Ev, Et.
  destruct Hd as (_ & _ & _ & Hdel). apply andb_false_iff. destruct (Z.eqb_spec 3 (name_type np)) as [E |]; [left | now right]. apply Z.eqb_neq. intros E2. apply Hdel; [now rewrite <- E | now rewrite <- E2].
Qed.

(** ** The length of a list *)

Lemma contents_cons c a l : contents ((c, a) :: l) = props_of a ++ contents l.
Proof. reflexivity. Qed.

Lemma zlength_props a : zlength (props_of a) = Z.b2z (bool_decide (a.1 <> None)) + Z.b2z (bool_decide (a.2 <> None)).
Proof. destruct a as [[] []]; reflexivity. Qed.

Lemma contents_bound l : 0 <= zlength (contents l) <= 2 * zlength (cps l).
Proof.
  induction l as [| [c a] l IH]; [unfold contents, zlength; cbn; lia |]. rewrite contents_cons, zlength_app, zlength_props. cbn [cps map fst]. rewrite zlength_cons. change (map fst l) with (cps l).
  destruct (bool_decide (a.1 <> None)), (bool_decide (a.2 <> None)); cbn [Z.b2z]; lia.
Qed.

Section Room.
Context (refs : Z -> bool).

Lemma cps_nodup o (g : option Z * chain) : NoDup (cells_of refs o g) -> NoDup (cps g.2).
Proof. unfold cells_of. intros H. apply NoDup_app in H as (_ & _ & H). now apply NoDup_app in H. Qed.

Lemma list_linked M w G extra o g : rep_m refs M w G extra -> G !! o = Some g -> exists head, linked (cells w) head g.2.
Proof.
  intros Hrep Hg. destruct (rep_list _ _ _ _ _ Hrep o g Hg) as (ob & _ & [Hl _]). destruct g as [[c |] l]; cbn [fst snd] in *; [destruct Hl as (_ & _ & h & _ & Hl & _) |]; eauto.
Qed.

(** The memory bounds the properties *)
Lemma contents_room M w G extra o g : rep_m refs M w G extra -> G !! o = Some g -> zlength (contents g.2) <= 357913940 /\ (length g.2 <= size (cells w))%nat.
Proof.
  intros Hrep Hg. destruct (list_linked M w G extra o g Hrep Hg) as [head Hl]. destruct (rep_nodup _ _ _ _ _ Hrep o g Hg) as [Hnd _]. apply cps_nodup in Hnd.
  assert (Hcells : forall cp, cp ∈ cps g.2 -> exists x, cells w !! cp = Some (PAIR x)) by (intros cp Hcp; exact (linked_in _ _ _ _ Hl Hcp)). split.
  - pose proof (contents_bound g.2) as Hb.
    assert (Hroom : 24 * zlength (cps g.2) <= 8 * 536870912).
    { apply (holding_room (heap w) (cell_size <$> cells w)); [exact (rep_heap _ _ _ _ _ Hrep) | lia | exact Hnd |]. apply Forall_forall. intros cp Hcp. destruct (Hcells cp Hcp) as [x Hx]. now rewrite lookup_fmap, Hx. }
    lia.
  - replace (length g.2) with (length (cps g.2)) by apply length_map. rewrite <- (size_dom (D := gset Z) (cells w)). rewrite <- (size_list_to_set (C := gset Z) (cps g.2) Hnd). apply subseteq_size.
    intros cp Hcp. apply elem_of_list_to_set in Hcp. destruct (Hcells cp Hcp) as [x Hx]. apply elem_of_dom. now exists (PAIR x).
Qed.

End Room.

(** ** Counting *)

Definition live_slot (s : slot) : Z := if negb (types s =? ECMA_PROPERTY_TYPE_DELETED) then 1 else 0.

Lemma live_slot_is s a : (forall p, a = Some p -> prop_ok p) -> slot_is s a -> live_slot s = Z.b2z (bool_decide (a <> None)).
Proof.
  intros Hok Hs. unfold live_slot. destruct a as [p |]; [now rewrite (slot_named s p (Hok p eq_refl) Hs) |]. destruct Hs as [-> _]. now rewrite Z.eqb_refl.
Qed.

Definition chain_props_ok (l : chain) : Prop := Forall prop_ok (contents l).

Lemma chain_props_cons c a l : chain_props_ok ((c, a) :: l) -> (forall p, a.1 = Some p -> prop_ok p) /\ (forall p, a.2 = Some p -> prop_ok p) /\ chain_props_ok l.
Proof.
  unfold chain_props_ok. rewrite contents_cons. intros H. apply Forall_app in H as [H1 H2]. splits; [intros p E | intros p E | exact H2]; unfold props_of in H1; apply Forall_app in H1 as [Ha Hb].
  - rewrite E in Ha. now apply Forall_cons in Ha as [? _].
  - rewrite E in Hb. now apply Forall_cons in Hb as [? _].
Qed.

Lemma count_named_run w l : forall fuel head n, linked (cells w) head l -> chain_props_ok l -> (length l <= fuel)%nat -> 0 <= n -> n + zlength (contents l) < B32 ->
  count_named fuel head n w = PDONE _ (n + zlength (contents l)) w.
Proof.
  induction l as [| [c a] l IH]; intros fuel head n Hl Hok Hf Hn Hb.
  - cbn [linked] in Hl. subst head. unfold contents, zlength. cbn [map concat length Z.of_nat]. rewrite Z.add_0_r. destruct fuel; reflexivity.
  - cbn [linked] in Hl. destruct Hl as (-> & Hc & x & Hx & [H0 H1] & Hl). destruct (chain_props_cons c a l Hok) as (Ok0 & Ok1 & Hok').
    destruct fuel as [| fuel]; [cbn in Hf; lia |]. cbn [count_named]. rewrite (proj2 (Z.eqb_neq _ _) Hc). unfold mbind at 1, P_bind at 1, get_pair. rewrite Hx. cbv zeta. fold (live_slot (slot0 x)) (live_slot (slot1 x)).
    rewrite (live_slot_is _ _ Ok0 H0), (live_slot_is _ _ Ok1 H1). rewrite contents_cons, zlength_app, zlength_props in Hb |- *. pose proof (contents_bound l) as Hbl.
    assert (0 <= Z.b2z (bool_decide (a.1 <> None)) /\ 0 <= Z.b2z (bool_decide (a.2 <> None))) as [B0 B1] by (split; match goal with |- 0 <= Z.b2z ?x => now destruct x end).
    rewrite u32_small by (unfold is_u32; lia). rewrite IH; [f_equal; lia | exact Hl | exact Hok' | cbn in Hf; lia | lia | lia].
Qed.

(** ** Filling *)

Lemma in_use_cons c a l q : in_use ((c, a) :: l) q <-> (q.1 = c /\ aget a q.2 <> None) \/ (q.1 <> c /\ in_use l q).
Proof.
  unfold in_use, prop_at. cbn [pair_in]. destruct (Z.eqb_spec q.1 c) as [-> | Hne]; split; intros H; try (right; split; assumption); try easy.
  - destruct H as [p E]. left. split; [reflexivity | congruence].
  - destruct H as [[_ H] | [H _]]; [| easy]. destruct (aget a q.2) as [p |]; [now exists p | easy].
  - now destruct H as [[H _] | [_ H]].
Qed.

Lemma in_use_cps l q : in_use l q -> q.1 ∈ cps l.
Proof. intros [p Hp]. exact (prop_at_cps _ _ _ Hp). Qed.

Lemma place_property_run w n h live hash m c b s a : filling n h live hash m -> 0 <= m < 2 ^ n -> c <> ECMA_NULL_POINTER -> ~ live (c, b) -> slot_is s a -> (forall p, a = Some p -> prop_ok p /\ hash (c, b) = prop_hash p) ->
  exists h', place_property h c b s w = PDONE _ h' w /\ filling n h' (fun q => (q = (c, b) /\ a <> None) \/ live q) hash (m + Z.b2z (bool_decide (a <> None)))
    /\ next_of_map h' = next_of_map h /\ null_count h' = null_count h /\ unused_count h' = unused_count h /\ max_property_count h' = max_property_count h.
Proof.
  intros Hf Hm Hc Hnew Hs Ha. unfold place_property. destruct a as [p |].
  - destruct (Ha p eq_refl) as [Hp Eh]. rewrite (slot_named s p Hp Hs), (slot_hash_is s p Hp Hs), <- Eh.
    destruct (place_entry_spec n h live hash m c b Hf Hm) as (h' & E & Hf' & E1 & E2 & E3); [rewrite Eh; now apply prop_hash_range | exact Hnew | exact Hc |]. rewrite E. exists h'.
    splits; try assumption; [reflexivity | | now rewrite (shape_max _ _ (filling_shape _ _ _ _ _ Hf')), (shape_max _ _ (filling_shape _ _ _ _ _ Hf))].
    rewrite bool_decide_true by discriminate. cbn [Z.b2z]. apply (filling_ext n h' (fun x => x = (c, b) \/ live x) _ hash); [exact Hf' | | reflexivity]. intros x. split; [intros [[-> _] | H]; auto | intros [-> | H]; [left; now split | now right]].
  - destruct Hs as [-> _]. rewrite Z.eqb_refl. exists h. splits; try reflexivity. rewrite bool_decide_false by easy. cbn [Z.b2z]. rewrite Z.add_0_r.
    apply (filling_ext n h live _ hash); [exact Hf | | reflexivity]. intros x. split; [intros [[_ H] | H]; [easy | exact H] | now right].
Qed.

Lemma fill_hashmap_run w hash l : forall fuel head n h live m, linked (cells w) head l -> chain_props_ok l -> NoDup (cps l) -> (length l <= fuel)%nat -> filling n h live hash m -> 0 <= m -> m + zlength (contents l) < 2 ^ n ->
  (forall q, live q -> ~ q.1 ∈ cps l) -> (forall q p, prop_at l q = Some p -> hash q = prop_hash p) ->
  exists h', fill_hashmap fuel head h w = PDONE _ h' w /\ filling n h' (fun q => in_use l q \/ live q) hash (m + zlength (contents l))
    /\ next_of_map h' = next_of_map h /\ null_count h' = null_count h /\ unused_count h' = unused_count h /\ max_property_count h' = max_property_count h.
Proof.
  induction l as [| [c a] l IH]; intros fuel head n h live m Hl Hok Hnd Hf Hfill Hm Hroom Hnew Hhash.
  - cbn [linked] in Hl. subst head. exists h. splits; try reflexivity; [destruct fuel; reflexivity |]. unfold contents, zlength. cbn [map concat length Z.of_nat]. rewrite Z.add_0_r.
    apply (filling_ext n h live _ hash); [exact Hfill | | reflexivity]. intros x. split; [intros [[p H] | H]; [discriminate | exact H] | now right].
  - cbn [linked] in Hl. destruct Hl as (-> & Hc & x & Hx & [H0 H1] & Hl). destruct (chain_props_cons c a l Hok) as (Ok0 & Ok1 & Hok'). cbn [cps map fst] in Hnd. apply NoDup_cons in Hnd as [Hcl Hnd].
    rewrite contents_cons, zlength_app, zlength_props in Hroom |- *. pose proof (contents_bound l) as Hbl.
    assert (B : 0 <= Z.b2z (bool_decide (a.1 <> None)) <= 1 /\ 0 <= Z.b2z (bool_decide (a.2 <> None)) <= 1) by (split; match goal with |- context [Z.b2z ?x] => now destruct x end).
    destruct fuel as [| fuel]; [cbn in Hf; lia |]. cbn [fill_hashmap]. rewrite (proj2 (Z.eqb_neq _ _) Hc). unfold mbind at 1, P_bind at 1, get_pair. rewrite Hx.
    assert (Hlive : forall b, ~ live (c, b)) by (intros b H; apply (Hnew _ H); left).
    assert (Hq : forall b p, aget a b = Some p -> hash (c, b) = prop_hash p) by (intros b p E; apply Hhash; unfold prop_at; cbn [pair_in fst snd]; now rewrite Z.eqb_refl).
    destruct (place_property_run w n h live hash m c false (slot0 x) a.1 Hfill) as (h1 & E1 & Hfill1 & N1 & U1 & V1 & X1); [lia | exact Hc | apply Hlive | exact H0 | intros p E; split; [now apply Ok0 | now apply (Hq false)] |].
    destruct (place_property_run w n h1 _ hash _ c true (slot1 x) a.2 Hfill1) as (h2 & E2 & Hfill2 & N2 & U2 & V2 & X2); [lia | exact Hc | intros [[E _] | H]; [discriminate | exact (Hlive _ H)] | exact H1 | intros p E; split; [now apply Ok1 | now apply (Hq true)] |].
    unfold mbind at 1, P_bind at 1. rewrite E1. unfold mbind at 1, P_bind at 1. rewrite E2.
    destruct (IH fuel (next_property_cp x) n h2 _ _ Hl Hok' Hnd ltac:(cbn in Hf; lia) Hfill2 ltac:(lia) ltac:(lia)) as (h3 & E3 & Hfill3 & N3 & U3 & V3 & X3).
    + intros q [[-> _] | [[-> _] | H]] Hin; [easy | easy |]. apply (Hnew q H). now right.
    + intros q p Hp. apply Hhash. unfold prop_at in *. cbn [pair_in]. destruct (Z.eqb_spec q.1 c) as [E | _]; [| exact Hp]. destruct Hcl. rewrite <- E. now apply (prop_at_cps l q p).
    + exists h3. splits; try congruence. replace (m + (Z.b2z (bool_decide (a.1 <> None)) + Z.b2z (bool_decide (a.2 <> None)) + zlength (contents l))) with (m + Z.b2z (bool_decide (a.1 <> None)) + Z.b2z (bool_decide (a.2 <> None)) + zlength (contents l)) by lia.
      apply (filling_ext n h3 (fun q => in_use l q \/ (q = (c, true) /\ a.2 <> None) \/ (q = (c, false) /\ a.1 <> None) \/ live q) _ hash); [exact Hfill3 | | reflexivity]. intros [cp b]. rewrite in_use_cons. cbn [fst snd]. split.
      * intros [[[-> Ha] | [_ H]] | H]; [| now left | auto]. right. destruct b; [left | right; left]; now split.
      * intros [H | [[[= -> ->] Ha] | [[[= -> ->] Ha] | H]]]; [| left; now left | left; now left | now right]. left. right. split; [| exact H]. intros ->. exact (Hcl (in_use_cps l _ H)).
Qed.

(** ** Creation *)

Lemma slot_hash_at l q p : prop_at l q = Some p -> slot_hash l q = prop_hash p.
Proof. unfold slot_hash. now intros ->. Qed.

Lemma total_size_pos n : 5 <= n <= 29 -> 0 < ECMA_PROPERTY_HASHMAP_GET_TOTAL_SIZE (2 ^ n) < 4294967296.
Proof.
  intros Hn. pose proof (pow_bounds n ltac:(lia)). assert (2 ^ n <= 536870912) by (change 536870912 with (2 ^ 29); apply Z.pow_le_mono_r; lia).
  unfold ECMA_PROPERTY_HASHMAP_GET_TOTAL_SIZE, sizeof_ecma_property_hashmap_t. rewrite Z.shiftr_div_pow2 by lia. change (2 ^ 3) with 8. Z.div_mod_to_equations; lia.
Qed.

(** The table that is filled is the hash map of the list *)
Lemma filled_map_is w l head next : linked (cells w) head l -> chain_ok l -> NoDup (cps l) -> forall fuel n, (length l <= fuel)%nat -> 16 <= zlength (contents l) <= 357913940 ->
  5 <= n <= 30 -> zlength (contents l) + zlength (contents l) / 2 <= 2 ^ n -> (n = 5 \/ 2 ^ n < 2 * (zlength (contents l) + zlength (contents l) / 2)) ->
  exists h, fill_hashmap fuel head (empty_table next (2 ^ n) (zlength (contents l))) w = PDONE _ h w /\ map_is h l /\ next_of_map h = next /\ max_property_count h = 2 ^ n.
Proof.
  intros Hl [Hok _] Hnd fuel n Hf Hm Hn Hroom Hmin. set (m := zlength (contents l)) in *. pose proof (pow_bounds n Hn) as Hpow.
  destruct (fill_hashmap_run w (slot_hash l) l fuel head n _ (fun _ => False) 0 Hl Hok Hnd Hf (empty_filling n next m (slot_hash l) Hn)) as (h & E & Hfill & Hnext & Hnull & Hunused & Hmax);
    [lia | fold m; Z.div_mod_to_equations; lia | easy | intros q p; apply slot_hash_at |].
  exists h. fold m in Hfill. rewrite Z.add_0_l in Hfill. splits; [exact E | | exact Hnext | exact Hmax]. exists n. split.
  - apply (table_ok_ext n h (fun q => in_use l q \/ False) _ (slot_hash l)); [| intros x; tauto | reflexivity]. cbn [empty_table null_count unused_count] in Hnull, Hunused. rewrite u32_small in Hnull, Hunused by (unfold is_u32; Z.div_mod_to_equations; lia).
    apply (filled_ok n h _ _ m Hfill Hnull Hunused); [lia | exact Hroom].
  - rewrite (filling_unused _ _ _ _ _ Hfill). destruct Hmin as [-> | Hmin]; [change (2 ^ 5) with 32 in *; lia | Z.div_mod_to_equations; lia].
Qed.

Section Rep.
Context (refs : Z -> bool).
Local Abbreviation rep := (rep_m refs (fun _ => map_is)).

(** A new cell becomes the hash map of a list *)
Lemma rep_add_map w G extra o l ob cp h0 h : rep w G (cp :: extra) -> G !! o = Some (None, l) -> objects w !! o = Some ob -> cells w !! cp = Some (HASHMAP h0) -> ~ cp ∈ extra -> cp <> JMEM_CP_NULL ->
  next_of_map h = property_list_cp ob -> max_property_count h = max_property_count h0 -> map_is h l ->
  let w' := set_cells (<[cp := HASHMAP h]> (cells w)) (set_objects (<[o := mk_object cp (swept ob)]> (objects w)) w) in
  rep w' (<[o := (Some cp, l)]> G) extra /\ kept w w' G (<[o := (Some cp, l)]> G) extra.
Proof.
  intros Hrep Hg Ho Hcp Hx Hc0 Hnext Hmax Hmap w'. destruct (rep_list _ _ _ _ _ Hrep o _ Hg) as (ob' & Ho' & [Hl Ha]). rewrite Ho in Ho'. injection Ho' as <-. cbn [fst snd] in Hl, Ha.
  destruct (rep_nodup _ _ _ _ _ Hrep o _ Hg) as [Hnd Hok]. change (cells_of refs o (None, l)) with (cps l ++ accs (refs o) l) in Hnd.
  assert (Hframe : forall c, c <> cp -> cells w' !! c = cells w !! c) by (intros c Hne; cbn [w' cells set_cells]; now apply lookup_insert_ne).
  assert (Hnew : forall o' g c, G !! o' = Some g -> c ∈ cells_of refs o' g -> c <> cp) by (intros o' g c Hg' Hc ->; apply (rep_extra _ _ _ _ _ Hrep o' g cp Hg' Hc); left).
  assert (Hcached : forall o' g q p, G !! o' = Some g -> prop_at g.2 q = Some p -> cached_at (cells w') q = cached_at (cells w) q).
  { intros o' g q p Hg' Hp. apply cached_frame, Hframe. apply (Hnew o' g q.1 Hg'), cps_cell. exact (prop_at_cps _ _ _ Hp). }
  split; [| constructor; [now apply (same_insert G o None) | reflexivity | intros c Hc; apply Hframe; now intros ->]].
  apply (list_change refs (fun _ => map_is) (fun _ => map_is) w w' G o (None, l) (Some cp, l) (cp :: extra) extra (mk_object cp (swept ob))); try assumption.
  - cbn [w' heap cells set_cells set_objects]. rewrite fmap_insert. rewrite insert_id; [exact (rep_heap _ _ _ _ _ Hrep) |]. rewrite lookup_fmap, Hcp. cbn. now rewrite Hmax.
  - cbn [w' objects set_cells set_objects]. apply lookup_insert_eq.
  - split; cbn [fst snd property_list_cp].
    + splits; [reflexivity | exact Hc0 |]. exists h. splits; [cbn [w' cells set_cells]; apply lookup_insert_eq | | exact Hmap]. rewrite Hnext. apply (linked_frame (cells w)); [exact Hl |].
      intros c Hc. apply Hframe. apply (Hnew o (None, l) c Hg), cps_cell. exact Hc.
    + unfold accs_in in *. rewrite Forall_forall in *. intros c Hc. rewrite Hframe; [now apply Ha |]. apply (Hnew o (None, l) c Hg). cbn. apply elem_of_app. now right.
  - intros o' Hne. cbn [w' objects set_cells set_objects]. split; [now rewrite lookup_insert_ne by congruence | reflexivity].
  - intros c _ Hc. apply Hframe. intros ->. apply Hc. left.
  - intros c x H. cbn [w' cells set_cells] in H. apply lookup_insert_Some in H as [[<- _] | [Hne H]].
    + split; [now exists (HASHMAP h0) |]. intros _. left. left.
    + split; [now exists x |]. intros [H1 | H1]; [left; now right |]. apply elem_of_cons in H1 as [-> | H1]; [easy | now right].
  - intros c [H | H]; [apply elem_of_cons in H as [-> | H]; [right; left | now left] | right; now right].
  - intros c H H2. apply elem_of_cons in H as [-> | H]; [easy |]. apply (rep_extra _ _ _ _ _ Hrep o (None, l) c Hg H). now right.
  - change (NoDup (cp :: (cps l ++ accs (refs o) l))). apply NoDup_cons. split; [| exact Hnd]. intros H. apply (Hnew o (None, l) cp Hg); [exact H | reflexivity].
  - apply (cache_change (cells w) _ _ G o (None, l)); [exact (rep_cache _ _ _ _ _ Hrep) | exact Hg | | |]; cbn [fst snd].
    + intros q p Hp Hc. split; [exact Hp |]. now rewrite (Hcached o (None, l) q p Hg Hp).
    + intros q p Hp Hc. split; [exact Hp |]. now rewrite <- (Hcached o (None, l) q p Hg Hp).
    + intros o' g0 q p _ Hg0 Hp. exact (Hcached o' g0 q p Hg0 Hp).
Qed.

Lemma hashmap_create_spec w G extra o l : rep w G extra -> present w extra -> G !! o = Some (None, l) ->
  pruns False (ecma_property_hashmap_create o) w (fun _ w' => exists G', rep w' G' extra /\ kept w w' G G' extra).
Proof.
  intros Hrep Hpr Hg. assert (Hskip : exists G', rep w G' extra /\ kept w w G G' extra) by (exists G; split; [exact Hrep | apply kept_refl]).
  destruct (rep_list _ _ _ _ _ Hrep o _ Hg) as (ob & Ho & [Hl _]). cbn [fst snd] in Hl. destruct (rep_nodup _ _ _ _ _ Hrep o _ Hg) as [Hnd Hok]. pose proof (cps_nodup refs o _ Hnd) as Hcps. cbn [snd] in Hcps, Hok.
  destruct (contents_room refs _ w G extra o _ Hrep Hg) as [Hroom Hlen]. cbn [snd] in Hroom, Hlen. pose proof (contents_bound l) as Hb. set (m := zlength (contents l)) in *.
  unfold ecma_property_hashmap_create. eapply pruns_done; [reflexivity |]. destruct (negb _); [exact Hskip |]. eapply pruns_done; [unfold get_list; rewrite Ho; reflexivity |].
  destruct (property_list_cp ob =? JMEM_CP_NULL); [exact Hskip |]. eapply pruns_done; [reflexivity |].
  eapply pruns_done; [apply (count_named_run w l); [exact Hl | apply Hok | lia | lia | fold m; lia] |]. fold m. rewrite Z.add_0_l.
  destruct (Z.ltb_spec m (ECMA_PROPERTY_HASMAP_MINIMUM_SIZE / 2)) as [_ | Hm]; [exact Hskip |]. change (ECMA_PROPERTY_HASMAP_MINIMUM_SIZE / 2) with 16 in Hm.
  destruct (table_size_spec m) as (n & Hn & Hfit & Hmin & E); [lia | change (2 ^ 30) with 1073741824; Z.div_mod_to_equations; lia |]. rewrite E. eapply pruns_done; [reflexivity |].
  assert (Hn29 : 5 <= n <= 29).
  { split; [lia |]. destruct Hmin as [-> | Hmin]; [lia |]. destruct (Z.eq_dec n 30) as [-> | ]; [change (2 ^ 30) with 1073741824 in Hmin; Z.div_mod_to_equations; lia | lia]. }
  apply pruns_bind. eapply pruns_stops; [| eapply pruns_mono; [apply (block_spec refs _ w G extra (HASHMAP (empty_table JMEM_CP_NULL (2 ^ n) m)) JMEM_PRESSURE_HIGH Hrep Hpr (total_size_pos n Hn29)); cbn; lia |]]; [discriminate |].
  intros [cp |] w1 [(G1 & [Hk1 Hmaps] & Hr) _]; cbv beta iota; [| exists G1; now split]. destruct Hr as (Hcell & Hx & Hcp & Hrep1). specialize (Hmaps o l Hg).
  destruct (rep_list _ _ _ _ _ Hrep1 o _ Hmaps) as (ob1 & Ho1 & [Hl1 _]). cbn [fst snd] in Hl1. eapply pruns_done; [unfold get_list; rewrite Ho1; reflexivity |].
  eapply pruns_done; [unfold put_list; rewrite Ho1; reflexivity |]. eapply pruns_done; [reflexivity |]. set (w2 := set_objects _ w1).
  destruct (contents_room refs _ w1 G1 _ o _ Hrep1 Hmaps) as [_ Hlen1]. cbn [snd] in Hlen1.
  destruct (filled_map_is w2 l (property_list_cp ob1) (property_list_cp ob1) Hl1 Hok Hcps (S (size (cells w2))) n) as (h & Eh & Hmap & Hnext & Hmax); [cbn [w2 cells set_objects]; lia | fold m; lia | exact Hn | exact Hfit | exact Hmin |].
  fold m in Eh. eapply pruns_done; [exact Eh |]. eapply pruns_final; [unfold put_hashmap; cbn [w2 cells set_objects]; rewrite Hcell; reflexivity |].
  destruct (rep_add_map w1 G1 extra o l ob1 cp _ h Hrep1 Hmaps Ho1 Hcell Hx ltac:(unfold JMEM_CP_NULL; lia) Hnext Hmax Hmap) as [Hrep3 Hk3]. eexists. split; [exact Hrep3 | exact (kept_steps _ _ _ _ _ _ _ Hk1 Hk3)].
Qed.

(** ** Changes of the table *)

(** The hash map has all properties of the list but one *)
Definition map_but (q : Z * bool) (h : ecma_property_hashmap_t) (l : chain) : Prop :=
  exists n, table_ok n h (fun x => in_use l x /\ x <> q) (slot_hash l) /\ 4 * unused n h <= 3 * 2 ^ n.

Definition only_at (o : Z) (mp : ecma_property_hashmap_t -> chain -> Prop) : maps := fun o' => if decide (o' = o) then mp else map_is.

Lemma only_at_here o mp : only_at o mp o = mp.
Proof. unfold only_at. now rewrite decide_True. Qed.

Lemma only_at_other o mp o' : o' <> o -> only_at o mp o' = map_is.
Proof. intros H. unfold only_at. now rewrite decide_False. Qed.

(** Without a hash map nothing is asked of it *)
Lemma rep_no_map w G extra o mp l : rep_m refs (only_at o mp) w G extra -> G !! o = Some (None, l) -> rep w G extra.
Proof.
  intros Hrep Hg. apply (rep_maps refs (only_at o mp)); [exact Hrep |]. intros o' c l' h Hg' H. destruct (decide (o' = o)) as [-> | Hne]; [congruence |]. now rewrite only_at_other in H.
Qed.

Lemma rep_put_map M mp w G extra o c l h h' : rep_m refs M w G extra -> G !! o = Some (Some c, l) -> cells w !! c = Some (HASHMAP h) -> next_of_map h' = next_of_map h -> max_property_count h' = max_property_count h -> mp h' l ->
  (forall o', o' <> o -> M o' = map_is) ->
  rep_m refs (only_at o mp) (set_cells (<[c := HASHMAP h']> (cells w)) w) G extra /\ kept w (set_cells (<[c := HASHMAP h']> (cells w)) w) G G extra.
Proof.
  intros Hrep Hg Hh Hnext Hmax Hmp HM. set (w' := set_cells _ w). destruct (rep_list _ _ _ _ _ Hrep o _ Hg) as (ob & Ho & [Hl Ha]). cbn [fst snd] in Hl, Ha. destruct Hl as (Ehead & Hc0 & h0 & Hh0 & Hl & _).
  rewrite Hh in Hh0. injection Hh0 as <-. destruct (rep_nodup _ _ _ _ _ Hrep o _ Hg) as [Hnd Hok]. pose proof Hnd as Hnd0. change (NoDup (c :: (cps l ++ accs (refs o) l))) in Hnd. apply NoDup_cons in Hnd as [Hcl Hnd].
  assert (Hframe : forall cp, cp <> c -> cells w' !! cp = cells w !! cp) by (intros cp Hne; cbn [w' cells set_cells]; now apply lookup_insert_ne).
  assert (Hin : c ∈ cells_of refs o (Some c, l)) by left.
  split; [| constructor; [apply same_refl | reflexivity | intros cp Hcp; apply Hframe; intros ->; exact (rep_extra _ _ _ _ _ Hrep o _ c Hg Hin Hcp)]].
  rewrite <- (insert_id G o _ Hg). apply (list_change refs M (only_at o mp) w w' G o (Some c, l) (Some c, l) extra extra ob); try assumption.
  - cbn [w' heap cells set_cells]. rewrite fmap_insert, insert_id; [exact (rep_heap _ _ _ _ _ Hrep) |]. rewrite lookup_fmap, Hh. cbn. now rewrite Hmax.
  - split; cbn [fst snd].
    + splits; [exact Ehead | exact Hc0 |]. exists h'. splits; [apply lookup_insert_eq | | now rewrite only_at_here]. rewrite Hnext. apply (linked_frame (cells w)); [exact Hl |]. intros cp Hcp. apply Hframe. intros ->. apply Hcl, elem_of_app. now left.
    + unfold accs_in in *. rewrite Forall_forall in *. intros x Hx. rewrite Hframe; [now apply Ha |]. intros ->. apply Hcl, elem_of_app. now right.
  - intros o' Hne. split; [reflexivity |]. rewrite only_at_other by exact Hne. now rewrite HM.
  - intros cp Hcp _. apply Hframe. now intros ->.
  - intros cp x H. cbn [w' cells set_cells] in H. split; [| tauto]. apply lookup_insert_Some in H as [[<- _] | [_ H]]; eauto.
  - tauto.
  - intros cp Hcp. exact (rep_extra _ _ _ _ _ Hrep o _ cp Hg Hcp).
  - rewrite insert_id by exact Hg. destruct (rep_cache _ _ _ _ _ Hrep) as [H1 H2 Hsound Hcomplete Honce].
    assert (Hcached : forall o' g q p, G !! o' = Some g -> prop_at g.2 q = Some p -> cached_at (cells w') q = cached_at (cells w) q).
    { intros o' g q p Hg' Hp. apply cached_frame, Hframe. intros E. pose proof (cps_cell refs o' g q.1 (prop_at_cps _ _ _ Hp)) as Hq. rewrite E in Hq.
      pose proof (rep_apart _ _ _ _ _ Hrep o' o g _ c Hg' Hg Hq Hin) as ->. rewrite Hg in Hg'. injection Hg' as <-. apply Hcl, elem_of_app. left. rewrite <- E. exact (prop_at_cps _ _ _ Hp). }
    constructor; [exact H1 | exact H2 | | | exact Honce].
    + intros r row e Hrow He Hu. destruct (Hsound r row e Hrow He Hu) as (o' & g & p & Hg' & Hp & Hid & Hr & Hca). exists o', g, p. splits; try assumption. now rewrite (Hcached o' g _ p).
    + intros o' g q p Hg' Hp. rewrite (Hcached o' g q p Hg' Hp). exact (Hcomplete o' g q p Hg' Hp).
Qed.

Lemma rep_only_map_is w G extra o : rep_m refs (only_at o map_is) w G extra -> rep w G extra.
Proof. intros H. apply (rep_maps refs (only_at o map_is)); [exact H |]. intros o' c l h _. unfold only_at. now destruct (decide (o' = o)). Qed.

Lemma cp_not_null M w G extra o g q p : rep_m refs M w G extra -> G !! o = Some g -> prop_at g.2 q = Some p -> q.1 <> ECMA_NULL_POINTER.
Proof.
  intros Hrep Hg Hp. destruct (list_memory refs M w G extra Hrep o g q p Hg Hp) as [(x & Hx & _) _]. pose proof (rep_cps _ _ _ _ _ Hrep _ _ Hx). unfold ECMA_NULL_POINTER, JMEM_CP_NULL. lia.
Qed.

Lemma hashmap_insert_spec w G extra o c l q p : rep_m refs (only_at o (map_but q)) w G extra -> present w extra -> G !! o = Some (Some c, l) -> prop_at l q = Some p ->
  pruns False (ecma_property_hashmap_insert o (p_name p) q.1 q.2) w (fun _ w' => exists G', rep w' G' extra /\ kept w w' G G' extra).
Proof.
  intros Hrep Hpr Hg Hp. destruct (rep_list _ _ _ _ _ Hrep o _ Hg) as (ob & Ho & [Hl _]). cbn [fst snd] in Hl. rewrite only_at_here in Hl. destruct Hl as (Ehead & Hc0 & h & Hh & Hl & Hmap).
  destruct (list_memory refs _ w G extra Hrep o _ q p Hg Hp) as [_ Hok].
  unfold ecma_property_hashmap_insert. eapply pruns_done; [unfold get_list; rewrite Ho, Ehead; reflexivity |]. eapply pruns_done; [unfold get_hashmap; rewrite Hh; reflexivity |].
  destruct (Z.ltb_spec (null_count h) (Z.shiftr (max_property_count h) 3)) as [_ | Hnull].
  - apply pruns_bind. eapply pruns_mono; [exact (hashmap_free_spec refs False _ w G extra o c l Hrep Hg) |]. intros _ w1 (Hrep1 & Hlog & Hex).
    assert (Hg1 : <[o := (None, l)]> G !! o = Some (None, l)) by apply lookup_insert_eq. pose proof (rep_no_map _ _ _ _ _ _ Hrep1 Hg1) as Hrep1'. cbv beta.
    assert (Hk : kept w w1 G (<[o := (None, l)]> G) extra) by (constructor; [exact (same_insert G o _ _ l Hg) | exact Hlog | exact Hex]).
    eapply pruns_mono; [apply (hashmap_create_spec w1 _ extra o l Hrep1'); [| exact Hg1] |].
    + unfold present in *. rewrite Forall_forall in *. intros cp Hcp. destruct (Hpr cp Hcp) as [x Hx]. exists x. now rewrite Hex.
    + intros _ w2 (G2 & Hrep2 & Hk2). exists G2. split; [exact Hrep2 | exact (kept_steps _ _ _ _ _ _ _ Hk Hk2)].
  - destruct Hmap as (n & Htable & Hunused). pose proof (cp_not_null _ _ _ _ _ _ _ _ Hrep Hg Hp) as Hq0. destruct q as [cp b]. cbn [fst snd] in *.
    destruct (insert_entry_spec n h _ (slot_hash l) cp b Htable) as (h' & E & Htable' & Hnext & Hmax & Hun).
    + rewrite (slot_hash_at _ _ _ Hp). now apply prop_hash_range.
    + tauto.
    + exact Hq0.
    + rewrite Z.shiftr_div_pow2 in Hnull by lia. exact Hnull.
    + rewrite (slot_hash_at _ _ _ Hp) in E. fold (prop_hash p). rewrite E. eapply pruns_done; [reflexivity |]. eapply pruns_final; [unfold put_hashmap; rewrite Hh; reflexivity |].
      destruct (rep_put_map _ map_is w G extra o c l h h' Hrep Hg Hh Hnext Hmax) as [Hrep' Hk'].
      * exists n. split; [| lia]. apply (table_ok_ext n h' _ _ (slot_hash l) _ Htable'); [| reflexivity]. intros x. split; [| intros [-> | [H _]]; [now exists p | exact H]].
        intros H. destruct (decide (x = (cp, b))); [now left | now right].
      * intros o' Hne. now apply only_at_other.
      * exists G. split; [now apply (rep_only_map_is _ _ _ o) | exact Hk'].
Qed.

Lemma hashmap_delete_run w G extra o c l q p : rep w G extra -> G !! o = Some (Some c, l) -> prop_at l q = Some p ->
  exists status w', ecma_property_hashmap_delete o (name_value (p_name p)) q w = PDONE _ status w' /\ kept w w' G G extra
    /\ objects w' = objects w /\ (forall cp, cp <> c -> cells w' !! cp = cells w !! cp) /\ heap w' = heap w
    /\ match status with
       | ECMA_PROPERTY_HASHMAP_DELETE_NO_HASHMAP => False
       | ECMA_PROPERTY_HASHMAP_DELETE_HAS_HASHMAP => rep_m refs (only_at o (map_but q)) w' G extra
       | ECMA_PROPERTY_HASHMAP_DELETE_RECREATE_HASHMAP => rep_m refs (only_at o (fun _ _ => True)) w' G extra
       end.
Proof.
  intros Hrep Hg Hp. destruct (rep_list _ _ _ _ _ Hrep o _ Hg) as (ob & Ho & [Hl _]). cbn [fst snd] in Hl. destruct Hl as (Ehead & Hc0 & h & Hh & Hl & n & Htable & Hunused).
  destruct (list_memory refs _ w G extra Hrep o _ q p Hg Hp) as [(x & Hx & Hs) Hok]. pose proof (cp_not_null _ _ _ _ _ _ _ _ Hrep Hg Hp) as Hq0.
  destruct (delete_entry_spec n h _ (slot_hash l) q.1 q.2 Htable) as (h' & status & E & Hnext & Hmax & Hst).
  - rewrite <- surjective_pairing, (slot_hash_at _ _ _ Hp). now apply prop_hash_range.
  - rewrite <- surjective_pairing. now exists p.
  - exact Hq0.
  - rewrite <- surjective_pairing in E. rewrite (slot_hash_at _ _ _ Hp) in E. exists status, (set_cells (<[c := HASHMAP h']> (cells w)) w).
    assert (HM : forall o', o' <> o -> (fun _ : Z => map_is) o' = map_is) by reflexivity.
    assert (Hk : kept w (set_cells (<[c := HASHMAP h']> (cells w)) w) G G extra) by (apply (rep_put_map _ (fun _ _ => True) w G extra o c l h h' Hrep Hg Hh Hnext Hmax I HM)).
    split; [| split; [exact Hk | split; [reflexivity | split; [intros cp Hne; now apply lookup_insert_ne | split; [reflexivity |]]]]].
    + unfold ecma_property_hashmap_delete, mbind, P_bind, get_list. rewrite Ho, Ehead. unfold get_hashmap. rewrite Hh. unfold get_property, mbind, P_bind, get_pair. rewrite Hx. unfold mret, P_ret.
      pose proof (slot_hash_is _ p Hok Hs) as Ehash. destruct Hs as (Hn & _). rewrite <- Hn at 1. rewrite Ehash, E. unfold put_hashmap. cbn [from_option fst snd]. unfold mret, P_ret. rewrite Hh. reflexivity.
    + destruct status; [easy | | exact (proj1 (rep_put_map _ _ w G extra o c l h h' Hrep Hg Hh Hnext Hmax I HM))]. destruct Hst as [Htable' Hun'].
      apply (rep_put_map _ _ w G extra o c l h h' Hrep Hg Hh Hnext Hmax); [| exact HM]. exists n. split; [| exact Hun']. rewrite <- surjective_pairing in Htable'. apply (table_ok_ext n h' _ _ (slot_hash l) _ Htable'); [| reflexivity]. intros y. tauto.
Qed.

(** ** Search *)

(** The property of a name in a list *)
Definition found (l : chain) (k : name_key) (r : option (Z * bool)) : Prop :=
  match r with Some q => exists p, prop_at l q = Some p /\ key p = Some k | None => forall q p, prop_at l q = Some p -> key p <> Some k end.

Lemma hashmap_find_run w G extra o c l h np k : rep w G extra -> G !! o = Some (Some c, l) -> cells w !! c = Some (HASHMAP h) -> key_of np = Some k ->
  exists r, ecma_property_hashmap_find h np w = PDONE _ r w /\ found l k r.
Proof.
  intros Hrep Hg Hh Hk. destruct (rep_list _ _ _ _ _ Hrep o _ Hg) as (ob & Ho & [Hl _]). cbn [fst snd] in Hl. destruct Hl as (Ehead & Hc0 & h0 & Hh0 & Hl & n & Htable & Hunused).
  rewrite Hh in Hh0. injection Hh0 as <-. destruct Htable as [Hs Hholds Hnu Hun Hroom]. pose proof (pow_bounds n (shape_n _ _ Hs)) as Hpow.
  assert (Hnp : is_name np) by now exists k. pose proof (hash_u32 np Hnp) as Hu. unfold is_u32 in Hu.
  set (mb := fun q => match prop_at l q with Some p => bool_decide (key p = Some k) | None => false end).
  assert (Hmatch : forall q, in_use l q -> property_matches w np q.1 q.2 = Some (mb q)).
  { intros q [p Hp]. destruct (list_memory refs _ w G extra Hrep o _ q p Hg Hp) as [(x & Hx & Hslot) Hok]. unfold property_matches, mb. rewrite Hx, Hp. f_equal. now apply slot_matches_prop. }
  assert (Hu0 : 0 <= ecma_string_hash np) by lia.
  destruct (find_entry_spec n h Hs (ecma_string_hash np) Hu0 (property_matches w np) mb) with (live := in_use l) (hash := slot_hash l) as (r & E & Hr).
  - intros i cp b Hi Hitem. apply (Hmatch (cp, b)). exact (holds_only _ _ _ _ Hholds i cp b Hi Hitem).
  - exact Hholds.
  - assert (4 <= 2 ^ n / 8) by (apply Z.div_le_lower_bound; lia). lia.
  - intros q [p Hp] Hm. unfold mb in Hm. rewrite Hp in Hm. apply bool_decide_eq_true in Hm. rewrite (slot_hash_at _ _ _ Hp). unfold prop_hash. symmetry. exact (hash_key (p_name p) np k Hm Hk).
  - exists r. split; [unfold ecma_property_hashmap_find, mbind, P_bind, get_world; rewrite E; reflexivity |]. destruct r as [q |]; cbn [found].
    + destruct Hr as [[p Hp] Hm]. exists p. split; [exact Hp |]. unfold mb in Hm. rewrite Hp in Hm. now apply bool_decide_eq_true in Hm.
    + intros q p Hp Hkey. specialize (Hr q (ex_intro _ p Hp)). unfold mb in Hr. rewrite Hp in Hr. now apply bool_decide_eq_false in Hr.
Qed.

(** The walk *)
Lemma find_in_list_run w np k l : key_of np = Some k -> forall fuel head steps, linked (cells w) head l -> chain_props_ok l -> NoDup (cps l) -> (length l <= fuel)%nat ->
  exists r, find_in_list fuel head np steps w = PDONE _ r w /\ found l k r.1.
Proof.
  intros Hk. assert (Hnp : is_name np) by now exists k. induction l as [| [c a] l IH]; intros fuel head steps Hl Hok Hnd Hf.
  - cbn [linked] in Hl. subst head. exists (None, steps). split; [destruct fuel; reflexivity |]. intros q p H. discriminate.
  - cbn [linked] in Hl. destruct Hl as (-> & Hc & x & Hx & [H0 H1] & Hl). destruct (chain_props_cons c a l Hok) as (Ok0 & Ok1 & Hok'). cbn [cps map fst] in Hnd. apply NoDup_cons in Hnd as [Hcl Hnd].
    destruct fuel as [| fuel]; [cbn in Hf; lia |]. cbn [find_in_list]. rewrite (proj2 (Z.eqb_neq _ _) Hc). unfold mbind, P_bind, get_pair. rewrite Hx.
    assert (Hslot : forall b, slot_matches np (get_slot x b) = match aget a b with Some p => bool_decide (key p = Some k) | None => false end).
    { intros b. assert (Hb : slot_is (get_slot x b) (aget a b)) by now destruct b. destruct (aget a b) as [p |] eqn:E; [| now apply slot_matches_none].
      apply slot_matches_prop; [| exact Hb | exact Hk]. destruct b; [now apply Ok1 | now apply Ok0]. }
    assert (Hat : forall b, prop_at ((c, a) :: l) (c, b) = aget a b) by (intros b; unfold prop_at; cbn [pair_in fst snd]; now rewrite Z.eqb_refl).
    change (slot0 x) with (get_slot x false). change (slot1 x) with (get_slot x true). rewrite !Hslot.
    destruct (match aget a false with Some p => bool_decide (key p = Some k) | None => false end) eqn:E0.
    { exists (Some (c, false), steps). split; [reflexivity |]. cbn [found fst]. rewrite Hat. destruct (aget a false) as [p |]; [| discriminate]. exists p. split; [reflexivity | now apply bool_decide_eq_true in E0]. }
    destruct (match aget a true with Some p => bool_decide (key p = Some k) | None => false end) eqn:E1.
    { exists (Some (c, true), steps). split; [reflexivity |]. cbn [found fst]. rewrite Hat. destruct (aget a true) as [p |]; [| discriminate]. exists p. split; [reflexivity | now apply bool_decide_eq_true in E1]. }
    destruct (IH fuel (next_property_cp x) (u32 (steps + 1)) Hl Hok' Hnd ltac:(cbn in Hf; lia)) as ([r s] & Er & Hr). exists (r, s). split; [exact Er |]. cbn [fst] in *.
    assert (Htail : forall q, q.1 <> c -> prop_at ((c, a) :: l) q = prop_at l q) by (intros q Hne; unfold prop_at; cbn [pair_in]; now rewrite (proj2 (Z.eqb_neq _ _) Hne)).
    destruct r as [q |]; cbn [found] in *.
    + destruct Hr as (p & Hp & Hkey). exists p. split; [| exact Hkey]. rewrite Htail; [exact Hp |]. intros E. apply Hcl. rewrite <- E. exact (prop_at_cps _ _ _ Hp).
    + intros q p Hp Hkey. destruct (Z.eq_dec q.1 c) as [E | Hne]; [| rewrite Htail in Hp by exact Hne; exact (Hr q p Hp Hkey)].
      destruct q as [cq b]. cbn in E. subst cq. rewrite Hat in Hp. destruct b; rewrite Hp in *; apply bool_decide_eq_false in E0 || apply bool_decide_eq_false in E1; congruence.
Qed.
End Rep.
End Map.
