(* ===== verification/PropCreate.v ===== *)
(** * Search and creation of properties

    ecma_find_named_property finds the property of the name, whatever the lookup cache and
    the hash map of the object are; ecma_create_property puts a property in front of the
    others. *)
From Stdlib Require Import ZArith Lia Bool List.
From stdpp Require Import base gmap list.
From S2P Require Import Prelude JmemPointers Values Jmem PropNames PropHashmap PropProbing Properties PropState PropMemory PropCache PropMap.
Import ListNotations.
#[local] Open Scope Z_scope.

Section Create.
Context {PN : PropertyNames} {PH : PropertyHeap} (refs : Z -> bool).
Local Abbreviation rep := (rep_m refs (fun _ => map_is)).

Lemma kept_present w w' G G' extra : kept w w' G G' extra -> present w extra -> present w' extra.
Proof. intros [_ _ H] Hp. unfold present in *. rewrite Forall_forall in *. intros cp Hin. destruct (Hp cp Hin) as [c E]. exists c. now rewrite H. Qed.

(** ** Search *)

Lemma register_spec w G extra o g q p : rep w G extra -> G !! o = Some g -> prop_at g.2 q = Some p ->
  pruns False (register o (Some q)) w (fun _ w' => rep w' G extra /\ kept w w' G G extra).
Proof.
  intros Hrep Hg Hp. destruct (list_memory refs _ w G extra Hrep o g q p Hg Hp) as [(x & Hx & Hs) Hok]. unfold register.
  eapply pruns_done; [unfold get_property, mbind, P_bind, get_pair; rewrite Hx; reflexivity |]. destruct (ecma_is_property_lcached (types (get_slot x q.2))) eqn:E.
  - apply pruns_ret. split; [exact Hrep | apply kept_refl].
  - destruct Hs as (-> & _). apply (lcache_insert_spec refs _ w G extra o g q p Hrep Hg Hp). unfold cached_at. now rewrite Hx.
Qed.

Lemma found_register w G extra o c l k r : rep w G extra -> G !! o = Some (c, l) -> found l k r ->
  pruns False (register o r) w (fun _ w' => rep w' G extra /\ kept w w' G G extra).
Proof.
  intros Hrep Hg Hr. destruct r as [q |]; [| apply pruns_ret; split; [exact Hrep | apply kept_refl]]. destruct Hr as (p & Hp & _). exact (register_spec w G extra o (c, l) q p Hrep Hg Hp).
Qed.

Lemma find_spec w G extra o c l np k : rep w G extra -> present w extra -> G !! o = Some (c, l) -> key_of np = Some k ->
  pruns False (ecma_find_named_property o np) w (fun r w' => found l k r /\ exists G', rep w' G' extra /\ kept w w' G G' extra).
Proof.
  intros Hrep Hpr Hg Hk. assert (Hnp : is_name np) by now exists k. unfold ecma_find_named_property.
  destruct (lookup_spec refs _ w G extra Hrep o _ np Hnp Hg) as (hit & Ehit & Hhit). eapply pruns_done; [exact Ehit |]. destruct hit as [q |].
  { destruct Hhit as (p & Hp & En). split; [exists p; split; [exact Hp | unfold key; now rewrite En] |]. exists G. split; [exact Hrep | apply kept_refl]. }
  destruct (rep_list _ _ _ _ _ Hrep o _ Hg) as (ob & Ho & [Hl _]). cbn [fst snd] in Hl. destruct (rep_nodup _ _ _ _ _ Hrep o _ Hg) as [Hnd [Hok _]]. pose proof (cps_nodup refs o _ Hnd) as Hcps. cbn [snd] in Hcps, Hok.
  eapply pruns_done; [unfold get_list; rewrite Ho; reflexivity |]. eapply pruns_done; [exact (has_map_run refs _ w G extra o _ ob Hrep Hg Ho) |]. cbn [fst]. destruct c as [c |]; cbn [fst snd] in *.
  - destruct Hl as (Ehead & Hc0 & h & Hh & Hl & Hmap). eapply pruns_done; [unfold get_hashmap; rewrite Ehead, Hh; reflexivity |].
    destruct (hashmap_find_run refs w G extra o c l h np k Hrep Hg Hh Hk) as (r & Er & Hr). eapply pruns_done; [exact Er |]. apply pruns_bind.
    eapply pruns_mono; [exact (found_register w G extra o _ l k r Hrep Hg Hr) |]. intros _ w1 [Hrep1 Hk1]. split; [exact Hr |]. exists G. now split.
  - destruct (contents_room refs _ w G extra o _ Hrep Hg) as [_ Hlen]. cbn [snd] in Hlen. eapply pruns_done; [reflexivity |].
    destruct (find_in_list_run w np k l Hk (S (size (cells w))) (property_list_cp ob) 0 Hl Hok Hcps ltac:(lia)) as ([r steps] & Er & Hr). cbn [fst] in Hr. eapply pruns_done; [exact Er |]. cbn [fst snd].
    apply pruns_bind. apply (pruns_mono _ _ _ (fun _ w1 => exists G1, rep w1 G1 extra /\ kept w w1 G G1 extra)).
    + destruct (_ <=? steps); [exact (hashmap_create_spec refs w G extra o l Hrep Hpr Hg) |]. apply pruns_ret. exists G. split; [exact Hrep | apply kept_refl].
    + intros _ w1 (G1 & Hrep1 & Hk1). destruct (same_lookup G G1 o None l (kept_chains _ _ _ _ _ Hk1) Hg) as [c1 Hg1]. apply pruns_bind.
      eapply pruns_mono; [exact (found_register w1 G1 extra o c1 l k r Hrep1 Hg1 Hr) |]. intros _ w2 [Hrep2 Hk2]. split; [exact Hr |]. exists G1. split; [exact Hrep2 | exact (kept_steps _ _ _ _ _ _ _ Hk1 Hk2)].
Qed.

(** ** A property more *)

(** The cell of an accessor *)
Definition acc_of (o : Z) (p : prop) : list Z := if refs o then [] else if is_accessor p then [p_value p] else [].

Lemma accs_add o l l' p : contents l' = p :: contents l -> accs (refs o) l' = acc_of o p ++ accs (refs o) l.
Proof. unfold accs, acc_of. intros ->. destruct (refs o); [reflexivity |]. cbn [List.filter]. now destruct (is_accessor p). Qed.

(** [l'] is [l] with the property [p] at [q], in front *)
Record adds (l : chain) (q : Z * bool) (p : prop) (l' : chain) : Prop := mk_adds {
  adds_contents : contents l' = p :: contents l;
  adds_free : prop_at l q = None;
  adds_at : forall q', prop_at l' q' = if bool_decide (q' = q) then Some p else prop_at l q'
}.

Lemma map_but_add h l q p l' next : map_is h l -> adds l q p l' ->
  map_but q (mk_hashmap next (max_property_count h) (null_count h) (unused_count h) (pair_list h) (bits h)) l'.
Proof.
  intros (n & Htable & Hun) [_ Hfree Hat]. exists n. split; [| exact Hun].
  apply (table_ok_ext n _ (in_use l) _ (slot_hash l)).
  - destruct Htable as [[? ? ? ?] [? ? ?] ? ? ?]. constructor; try assumption; constructor; assumption.
  - intros x. unfold in_use. rewrite Hat. case_bool_decide as E; [subst x; rewrite Hfree; split; [now intros [_ H] | intros [p0 H]; discriminate] | tauto].
  - intros x [p0 Hp0]. unfold slot_hash. rewrite Hat. case_bool_decide as E; [subst x; congruence | reflexivity].
Qed.

Lemma rep_add (M : maps) w w' G o c l l' q p ob' new extra : rep w G (new ++ acc_of o p ++ extra) -> G !! o = Some (c, l) -> adds l q p l' ->
  prop_ok p -> Forall (fun p' => key p' <> key p) (contents l) ->
  cps l' = new ++ cps l -> NoDup (new ++ acc_of o p ++ extra) ->
  heap w' = heap w -> lcache w' = lcache w -> cell_size <$> cells w' = cell_size <$> cells w ->
  objects w' !! o = Some ob' -> list_is refs (M o) (cells w') (property_list_cp ob') o (c, l') ->
  (forall o', o' <> o -> objects w' !! o' = objects w !! o' /\ M o' = map_is) ->
  (forall cp, ~ cp ∈ cells_of refs o (c, l) -> ~ cp ∈ new -> cells w' !! cp = cells w !! cp) ->
  cached_at (cells w') q = false -> (forall q' p', prop_at l q' = Some p' -> cached_at (cells w') q' = cached_at (cells w) q') ->
  rep_m refs M w' (<[o := (c, l')]> G) extra.
Proof.
  intros Hrep Hg [Hcontents Hfree Hat] Hp Hkey Hcps Hnew Hheap Hcache Hsize Hob Hlist Hrest Hframe Hcq Hcached. destruct (rep_nodup _ _ _ _ _ Hrep o _ Hg) as [Hnd [Hok Hkeys]]. cbn [snd] in *.
  assert (Hcells : forall cp, cp ∈ cells_of refs o (c, l') <-> cp ∈ cells_of refs o (c, l) \/ cp ∈ new \/ cp ∈ acc_of o p).
  { intros cp. unfold cells_of. cbn [fst snd]. rewrite Hcps, (accs_add o l l' p Hcontents). rewrite !elem_of_app. tauto. }
  assert (Hout : forall cp, cp ∈ cells_of refs o (c, l) -> ~ cp ∈ new ++ acc_of o p ++ extra) by (intros cp H; exact (rep_extra _ _ _ _ _ Hrep o _ cp Hg H)).
  assert (Hdom : forall cp x, cells w' !! cp = Some x -> exists x0, cells w !! cp = Some x0).
  { intros cp x H. assert (E : (cell_size <$> cells w') !! cp = Some (cell_size x)) by (rewrite lookup_fmap, H; reflexivity). rewrite Hsize, lookup_fmap in E. destruct (cells w !! cp) as [x0 |]; [now exists x0 | discriminate]. }
  apply NoDup_app in Hnew as (Hnd1 & Hd1 & Hnd2). apply NoDup_app in Hnd2 as (Hnd2 & Hd2 & _).
  apply (list_change refs (fun _ => map_is) M w w' G o (c, l) (c, l') (new ++ acc_of o p ++ extra) extra ob'); try assumption.
  - rewrite Hheap, Hsize. exact (rep_heap _ _ _ _ _ Hrep).
  - intros cp H1 H2. apply Hframe; [exact H1 |]. intros H. apply H2, elem_of_app. now left.
  - intros cp x H. split; [exact (Hdom cp x H) |]. rewrite Hcells, !elem_of_app. tauto.
  - intros cp. rewrite Hcells, !elem_of_app. tauto.
  - intros cp H Hx. apply Hcells in H as [H | [H | H]].
    + apply (Hout cp H). rewrite !elem_of_app. tauto.
    + apply (Hd1 cp H). rewrite elem_of_app. tauto.
    + now apply (Hd2 cp H).
  - unfold cells_of in *. cbn [fst snd] in *. rewrite Hcps, (accs_add o l l' p Hcontents). apply NoDup_app in Hnd as (N1 & D1 & N2). apply NoDup_app in N2 as (N2 & D2 & N3).
    assert (Ho1 : forall cp, cp ∈ option_list c \/ cp ∈ cps l \/ cp ∈ accs (refs o) l -> ~ cp ∈ new /\ ~ cp ∈ acc_of o p).
    { intros cp H. assert (Hn : ~ cp ∈ new ++ acc_of o p ++ extra) by (apply Hout; rewrite !elem_of_app; tauto). rewrite !elem_of_app in Hn. tauto. }
    assert (Hd : forall cp, cp ∈ new -> ~ cp ∈ acc_of o p) by (intros cp H H2; apply (Hd1 cp H), elem_of_app; now left).
    apply NoDup_app. split; [exact N1 |]. split.
    { intros cp H. specialize (D1 cp H). pose proof (Ho1 cp (or_introl H)) as [F1 F2]. rewrite !elem_of_app in *. tauto. }
    rewrite <- app_assoc. apply NoDup_app. split; [exact Hnd1 |]. split.
    { intros cp H. specialize (Hd cp H). rewrite !elem_of_app. intros [H2 | [H2 | H2]]; [| easy |]; destruct (Ho1 cp ltac:(tauto)); tauto. }
    apply NoDup_app. split; [exact N2 |]. split.
    { intros cp H. specialize (D2 cp H). pose proof (Ho1 cp (or_intror (or_introl H))) as [F1 F2]. rewrite elem_of_app. tauto. }
    apply NoDup_app. split; [exact Hnd2 |]. split; [| exact N3]. intros cp H H2. destruct (Ho1 cp ltac:(tauto)); tauto.
  - split; cbn [snd]; rewrite Hcontents; [now apply Forall_cons |]. cbn [map]. apply NoDup_cons. split; [| exact Hkeys]. intros Hin. apply list_elem_of_In, in_map_iff in Hin as (p' & E & Hin). apply list_elem_of_In in Hin.
    rewrite Forall_forall in Hkey. now apply (Hkey p' Hin).
  - rewrite Hcache. apply (cache_change (cells w) _ _ G o (c, l)); [exact (rep_cache _ _ _ _ _ Hrep) | exact Hg | | |]; cbn [snd].
    + intros q' p' Hp' Hc. rewrite Hat. rewrite (Hcached q' p' Hp'). split; [| exact Hc]. case_bool_decide as E; [subst q'; congruence | exact Hp'].
    + intros q' p' Hp' Hc. rewrite Hat in Hp'. case_bool_decide as E; [subst q'; congruence |]. split; [exact Hp' | now rewrite <- (Hcached q' p' Hp')].
    + intros o' g0 q' p' Hne Hg0 Hp'. pose proof (cps_cell refs o' g0 _ (prop_at_cps _ _ _ Hp')) as Hin. destruct (rep_other _ _ _ _ _ Hrep o o' _ g0 q'.1 Hg Hg0 Hne Hin) as [F1 F2].
      apply cached_frame, Hframe; [exact F1 |]. intros H. apply F2, elem_of_app. now left.
Qed.

(** ** Creation *)

Definition name_refs (np : Z) : list event := if ECMA_IS_DIRECT_STRING np then [] else [REF_NAME np].

Definition created (w : pworld) (G : gmap Z (option Z * chain)) (extra : list Z) (o : Z) (l : chain) (p : prop) (q : Z * bool) (w' : pworld) : Prop :=
  exists G' c' l', rep w' G' extra /\ G' !! o = Some (c', l') /\ adds l q p l' /\ snd <$> G' = <[o := l']> (snd <$> G)
    /\ log w' = log w ++ name_refs (p_name p) /\ forall cp, cp ∈ extra -> cells w' !! cp = cells w !! cp.

Definition new_slot (p : prop) : slot := mk_slot (u8 (Z.lor (p_flags p) (64 * name_type (p_name p)))) (name_value (p_name p)) (p_value p).

Lemma to_name np : is_name np -> ecma_string_to_property_name np = (name_value np, 64 * name_type np).
Proof. intros H. now destruct (name_view np H) as (_ & E & _). Qed.

Lemma new_slot_is p : prop_ok p -> slot_is (new_slot p) (Some p) /\ ecma_is_property_lcached (types (new_slot p)) = false.
Proof.
  intros Hp. pose proof Hp as (Hn & Hf & _). destruct (name_view (p_name p) Hn) as (Ht & E & _). pose proof (with_name_sum (p_flags p) (p_name p) Hn Hf) as Es. unfold with_name in Es. rewrite E in Es. cbn [snd] in Es.
  assert (Et : types (new_slot p) = p_flags p + mark false + 64 * name_type (p_name p)) by (cbn [new_slot types mark]; rewrite Es; unfold u8; rewrite Z.mod_small; lia).
  split; [split; [reflexivity | split; [reflexivity | now exists false]] |]. rewrite Et. now apply (marked_types p false _ Hp).
Qed.

Lemma ref_name_run np w : exists w', ref_name np w = PDONE _ tt w' /\ cells w' = cells w /\ objects w' = objects w /\ lcache w' = lcache w /\ heap w' = heap w /\ log w' = log w ++ name_refs np.
Proof. unfold ref_name, name_refs. destruct (ECMA_IS_DIRECT_STRING np); eexists; (split; [reflexivity |]); splits; try reflexivity. now rewrite app_nil_r. Qed.

Lemma map_nonempty h l : map_is h l -> l <> [].
Proof.
  intros (n & [Hs Hh _ _ _] & Hun) ->. pose proof (pow_bounds n (shape_n _ _ Hs)) as Hpow. assert (E : unused n h = 2 ^ n); [| lia]. unfold unused.
  rewrite (count_ext (fun _ => true)), count_all; [lia |]. intros i Hi. destruct (item_at h i) as [| | cp b] eqn:Ei; try reflexivity. destruct (holds_only _ _ _ _ Hh i cp b ltac:(lia) Ei) as [p Hp]. discriminate.
Qed.

Lemma chains_insert G o c l : snd <$> (<[o := (c, l)]> G : gmap Z (option Z * chain)) = <[o := l]> (snd <$> G).
Proof. now rewrite fmap_insert. Qed.

Lemma created_after w w1 G G1 extra o l c1 l1 p q : rep w1 G1 extra -> G1 = <[o := (c1, l1)]> G -> adds l q p l1 -> log w1 = log w ++ name_refs (p_name p) -> (forall cp, cp ∈ extra -> cells w1 !! cp = cells w !! cp) ->
  forall w2 G2, rep w2 G2 extra -> kept w1 w2 G1 G2 extra -> created w G extra o l p q w2.
Proof.
  intros Hrep -> Ha Hlog Hx w2 G2 Hrep2 [Hs Hl He]. destruct (same_lookup _ G2 o c1 l1 Hs (lookup_insert_eq _ _ _)) as [c2 Hg2]. exists G2, c2, l1. splits; try assumption.
  - rewrite Hs. apply chains_insert.
  - congruence.
  - intros cp H. now rewrite He, Hx.
Qed.

Section Property.
Context (o : Z) (p : prop) (Hp : prop_ok p).

(** What a new property needs *)
Record fresh (w : pworld) (G : gmap Z (option Z * chain)) (extra : list Z) (l : chain) : Prop := mk_fresh {
  fresh_rep : rep w G (acc_of o p ++ extra);
  fresh_key : Forall (fun p' => key p' <> key p) (contents l);
  fresh_cells : accs_in (cells w) (acc_of o p);
  fresh_nodup : NoDup (acc_of o p ++ extra);
  fresh_present : present w extra
}.

Lemma accs_in_add m l l' q : accs_in m (acc_of o p) -> accs_in m (accs (refs o) l) -> adds l q p l' -> accs_in m (accs (refs o) l').
Proof. intros H1 H2 Ha. rewrite (accs_add o l l' p (adds_contents _ _ _ _ Ha)). now apply Forall_app. Qed.

Lemma accs_in_frame m m' l : accs_in m l -> (forall cp, cp ∈ l -> m' !! cp = m !! cp) -> accs_in m' l.
Proof. unfold accs_in. rewrite !Forall_forall. intros H Hf x Hx. rewrite Hf by exact Hx. now apply H. Qed.

Lemma adds_in_first cp b tl : ~ cp ∈ cps tl -> adds ((cp, (None, b)) :: tl) (cp, false) p ((cp, (Some p, b)) :: tl).
Proof.
  intros Hcp. constructor; [reflexivity | unfold prop_at; cbn [pair_in fst snd]; now rewrite Z.eqb_refl |]. intros [c d]. unfold prop_at. cbn [pair_in fst snd]. destruct (Z.eqb_spec c cp) as [-> | Hne].
  - destruct d; case_bool_decide as E; try reflexivity; congruence.
  - rewrite bool_decide_false by congruence. reflexivity.
Qed.

Lemma adds_new_pair cp l : ~ cp ∈ cps l -> adds l (cp, true) p ((cp, (None, Some p)) :: l).
Proof.
  intros Hcp. assert (Hout : forall b, prop_at l (cp, b) = None) by (intros b; unfold prop_at; cbn [fst]; destruct (pair_in l cp) eqn:E; [destruct Hcp; exact (pair_in_cps l cp _ E) | reflexivity]).
  constructor; [reflexivity | apply Hout |]. intros [c d]. unfold prop_at at 1. cbn [pair_in fst snd]. destruct (Z.eqb_spec c cp) as [-> | Hne].
  - destruct d; case_bool_decide as E; try reflexivity; [congruence | congruence |]. symmetry. apply Hout.
  - rewrite bool_decide_false by congruence. reflexivity.
Qed.

Definition q_maps (c : option Z) (q : Z * bool) : maps := match c with Some _ => only_at o (map_but q) | None => fun _ => map_is end.

Lemma q_maps_other c q o' : o' <> o -> q_maps c q o' = map_is.
Proof. destruct c; [apply only_at_other | reflexivity]. Qed.

(** The hash map follows the new property *)
Definition insert_after (c : option Z) (q : Z * bool) : P (Z * bool) :=
  (if match c with Some _ => true | None => false end then ecma_property_hashmap_insert o (p_name p) q.1 q.2 else mret tt);; mret q.

Lemma insert_after_spec w w1 G extra c l c1 l1 q : rep_m refs (q_maps c1 q) w1 (<[o := (c1, l1)]> G) extra -> present w extra -> adds l q p l1 -> log w1 = log w ++ name_refs (p_name p) ->
  (forall cp, cp ∈ extra -> cells w1 !! cp = cells w !! cp) -> c = c1 ->
  pruns False (insert_after c q) w1 (fun r w' => r = q /\ created w G extra o l p q w').
Proof.
  intros Hrep Hpr Ha Hlog Hx ->. unfold insert_after. apply pruns_bind. assert (Hpr1 : present w1 extra) by (unfold present in *; rewrite Forall_forall in *; intros cp H; rewrite Hx by exact H; now apply Hpr).
  destruct c1 as [c1 |].
  - eapply pruns_mono; [apply (hashmap_insert_spec refs w1 _ extra o c1 l1 q p Hrep Hpr1); [apply lookup_insert_eq |] |].
    + rewrite (adds_at _ _ _ _ Ha). now rewrite bool_decide_true.
    + intros _ w2 (G2 & Hrep2 & Hk2). apply pruns_ret. split; [reflexivity |].
      assert (Hk : log w2 = log w1) by exact (kept_log _ _ _ _ _ Hk2). destruct Hk2 as [Hs _ He]. destruct (same_lookup _ G2 o (Some c1) l1 Hs (lookup_insert_eq _ _ _)) as [c2 Hg2].
      exists G2, c2, l1. splits; try assumption; [rewrite Hs; apply chains_insert | congruence | intros cp H; now rewrite He, Hx].
  - apply pruns_ret. apply pruns_ret. split; [reflexivity |]. apply (created_after w w1 G _ extra o l None l1 p q Hrep eq_refl Ha Hlog Hx w1 _ Hrep). apply kept_refl.
Qed.

Lemma create_in_first w G extra c cp b tl x : fresh w G extra ((cp, (None, b)) :: tl) -> G !! o = Some (c, (cp, (None, b)) :: tl) -> cells w !! cp = Some (PAIR x) ->
  pruns False (ref_name (p_name p);; put_pair cp (set_slot x false (new_slot p));; insert_after c (cp, false)) w
    (fun r w' => r = (cp, false) /\ created w G extra o ((cp, (None, b)) :: tl) p r w').
Proof.
  intros [Hrep Hkey Haccs Hnew Hpr] Hg Hx. set (l := (cp, (None, b)) :: tl) in *. destruct (ref_name_run (p_name p) w) as (w1 & E1 & Ec & Eo & El & Eh & Elog). eapply pruns_done; [exact E1 |].
  eapply pruns_done; [unfold put_pair; rewrite Ec, Hx; reflexivity |]. set (x' := set_slot x false (new_slot p)). set (w2 := set_cells _ w1).
  destruct (rep_list _ _ _ _ _ Hrep o _ Hg) as (ob & Ho & [Hl Ha]). cbn [fst snd] in Hl, Ha. destruct (rep_nodup _ _ _ _ _ Hrep o _ Hg) as [Hnd _]. pose proof (cps_nodup refs o _ Hnd) as Hcps. cbn [snd cps map fst l] in Hcps. apply NoDup_cons in Hcps as [Hcl Hcps].
  assert (Hframe : forall c0, c0 <> cp -> cells w2 !! c0 = cells w !! c0) by (intros c0 Hne; cbn [w2 cells set_cells]; now apply lookup_insert_ne).
  assert (Hin : cp ∈ cells_of refs o (c, l)) by (apply cps_cell; left).
  assert (Hxs : forall c0, c0 ∈ acc_of o p ++ extra -> cells w2 !! c0 = cells w !! c0) by (intros c0 H; apply Hframe; intros ->; exact (rep_extra _ _ _ _ _ Hrep o _ cp Hg Hin H)).
  destruct (new_slot_is p Hp) as [Hslot Hmark]. set (l' := (cp, (Some p, b)) :: tl). pose proof (adds_in_first cp b tl Hcl) as Hadds. fold l l' in Hadds.
  assert (Hlinked : forall head, linked (cells w) head l -> linked (cells w2) head l').
  { intros head H. cbn [linked l l'] in *. destruct H as (-> & Hn & y & Hy & [H0 H1] & Ht). rewrite Hx in Hy. injection Hy as <-. splits; [reflexivity | exact Hn |]. exists x'.
    split; [cbn [w2 cells set_cells]; apply lookup_insert_eq |]. split; [split; [exact Hslot | exact H1] |]. apply (linked_frame (cells w)); [exact Ht |]. intros c0 Hc0. apply Hframe. now intros ->. }
  assert (Hrep2 : rep_m refs (q_maps c (cp, false)) w2 (<[o := (c, l')]> G) extra).
  { apply (rep_add (q_maps c (cp, false)) w w2 G o c l l' (cp, false) p ob [] extra); try assumption.
    - reflexivity.
    - cbn [w2 cells set_cells]. rewrite fmap_insert. apply insert_id. now rewrite lookup_fmap, Hx.
    - cbn [w2 objects set_cells]. now rewrite Eo.
    - split; cbn [fst snd].
      + destruct c as [hc |]; [| now apply Hlinked]. destruct Hl as (Ehead & Hc0 & h & Hh & Hl & Hm). splits; [exact Ehead | exact Hc0 |]. exists h.
        splits; [rewrite Hframe; [exact Hh |]; intros ->; congruence | now apply Hlinked |]. unfold q_maps. rewrite only_at_here. pose proof (map_but_add h l _ p l' (next_of_map h) Hm Hadds) as Hb. now destruct h.
      + apply (accs_in_add (cells w2) l l' (cp, false)); [| | exact Hadds]; apply (accs_in_frame (cells w)); try assumption; intros c0 Hc0; [apply Hxs, elem_of_app; now left |].
        apply Hframe. intros ->. unfold cells_of in Hnd. apply NoDup_app in Hnd as (_ & _ & Hnd). apply NoDup_app in Hnd as (_ & N & _). apply (N cp); [left | exact Hc0].
    - intros o' Hne. split; [cbn [w2 objects set_cells]; now rewrite Eo | now apply q_maps_other].
    - intros c0 Hc0 _. apply Hframe. now intros ->.
    - unfold cached_at. cbn [fst snd w2 cells set_cells]. rewrite lookup_insert_eq. exact Hmark.
    - intros [c0 b0] p' Hp'. unfold cached_at. cbn [fst snd]. destruct (Z.eq_dec c0 cp) as [-> | Hne]; [| now rewrite Hframe]. cbn [w2 cells set_cells]. rewrite lookup_insert_eq, Hx.
      destruct b0; [reflexivity |]. unfold prop_at in Hp'. cbn [pair_in fst snd l] in Hp'. rewrite Z.eqb_refl in Hp'. discriminate. }
  eapply pruns_mono; [apply (insert_after_spec w w2 G extra c l c l' (cp, false) Hrep2 Hpr Hadds); [exact Elog | | reflexivity] |].
  - intros c0 Hc0. apply Hxs, elem_of_app. now right.
  - intros r w3 [-> H]. now split.
Qed.

Definition deleted_slot : slot := mk_slot ECMA_PROPERTY_TYPE_DELETED LIT_INTERNAL_MAGIC_STRING_DELETED 0.

(** The cells of a list and of its new pair *)
Lemma rep_new_pair w w' G extra c l cp next ob' (mem : gmap Z cell) : rep w G (cp :: acc_of o p ++ extra) -> G !! o = Some (c, l) -> Forall (fun p' => key p' <> key p) (contents l) ->
  accs_in (cells w) (acc_of o p) -> NoDup (acc_of o p ++ extra) -> ~ cp ∈ acc_of o p ++ extra -> cp <> JMEM_CP_NULL -> cells w !! cp = Some (PAIR new_pair) ->
  heap w' = heap w -> lcache w' = lcache w -> cells w' !! cp = Some (PAIR (mk_pair next deleted_slot (new_slot p))) ->
  cell_size <$> cells w' = cell_size <$> cells w -> objects w' !! o = Some ob' -> (forall o', o' <> o -> objects w' !! o' = objects w !! o') ->
  (forall c0, c0 <> cp -> Some c0 <> c -> cells w' !! c0 = cells w !! c0) ->
  let l' := (cp, (None, Some p)) :: l in
  (forall head, linked (cells w) head l -> linked (cells w') head l) -> list_is refs (q_maps c (cp, true) o) (cells w') (property_list_cp ob') o (c, l') ->
  rep_m refs (q_maps c (cp, true)) w' (<[o := (c, l')]> G) extra /\ adds l (cp, true) p l'.
Proof.
  intros Hrep Hg Hkey Haccs Hnew Hcpx Hc0 Hcp Hh Hlc Hcp' Hsize Hob Hrest Hframe l' Hlinked Hlist.
  assert (Hout : forall o' g x, G !! o' = Some g -> x ∈ cells_of refs o' g -> x <> cp) by (intros o' g x Hg' Hx ->; apply (rep_extra _ _ _ _ _ Hrep o' g cp Hg' Hx); left).
  assert (Hcl : ~ cp ∈ cps l) by (intros H; apply (Hout o (c, l) cp Hg); [now apply cps_cell | reflexivity]). pose proof (adds_new_pair cp l Hcl) as Hadds. split; [| exact Hadds].
  apply (rep_add (q_maps c (cp, true)) w w' G o c l l' (cp, true) p ob' [cp] extra); try assumption.
  - reflexivity.
  - apply NoDup_cons. now split.
  - intros o' Hne. split; [now apply Hrest | now apply q_maps_other].
  - intros c0 H1 H2. apply Hframe; [intros ->; apply H2; left |]. intros <-. apply H1. left.
  - unfold cached_at. cbn [fst snd]. rewrite Hcp'. exact (proj2 (new_slot_is p Hp)).
  - intros [c0 b0] p' Hp'. apply cached_frame. cbn [fst]. pose proof (prop_at_cps _ _ _ Hp') as Hin. cbn [fst] in Hin. apply Hframe; [now intros -> |]. intros E.
    destruct (rep_nodup _ _ _ _ _ Hrep o _ Hg) as [Hnd _]. rewrite <- E in Hnd. change (NoDup (c0 :: (cps l ++ accs (refs o) l))) in Hnd. apply NoDup_cons in Hnd as [N _]. apply N, elem_of_app. now left.
Qed.

Lemma create_in_new_pair_spec w G extra c l : fresh w G extra l -> G !! o = Some (c, l) ->
  pruns True (create_in_new_pair o (p_name p) (p_flags p) (p_value p)) w (fun q w' => created w G extra o l p q w').
Proof.
  intros [Hrep Hkey Haccs Hnew Hpr] Hg. unfold create_in_new_pair.
  assert (Hpr' : present w (acc_of o p ++ extra)).
  { unfold present. apply Forall_app. split; [| exact Hpr]. eapply Forall_impl; [exact Haccs |]. intros x (y & z & E). now exists (ACCESSORS y z). }
  apply pruns_bind. eapply pruns_mono; [exact (alloc_block_spec refs _ w G _ (PAIR new_pair) Hrep Hpr' ltac:(split; reflexivity)) |]. intros cp w1 (G1 & [[Hs1 Hl1 Hx1] _] & Hcp & Hcpx & Hcpr & Hrep1). cbv beta.
  destruct (same_lookup G G1 o c l Hs1 Hg) as [c1 Hg1]. clear Hg Hrep. destruct (rep_list _ _ _ _ _ Hrep1 o _ Hg1) as (ob & Ho & [Hl Ha]). cbn [fst snd] in Hl, Ha.
  destruct (rep_nodup _ _ _ _ _ Hrep1 o _ Hg1) as [Hnd _].
  eapply pruns_done; [unfold get_list; rewrite Ho; reflexivity |]. eapply pruns_done; [exact (has_map_run refs _ w1 G1 _ o _ ob Hrep1 Hg1 Ho) |]. rewrite (to_name (p_name p) (proj1 Hp)). cbn [fst].
  destruct (ref_name_run (p_name p) w1) as (w2 & E2 & Ec & Eo & El & Eh & Elog). eapply pruns_done; [exact E2 |]. cbv zeta. fold (new_slot p). fold deleted_slot.
  assert (Hc0 : cp <> JMEM_CP_NULL) by (unfold JMEM_CP_NULL; lia). assert (Haccs1 : accs_in (cells w1) (acc_of o p)) by (apply (accs_in_frame (cells w)); [exact Haccs | intros x H; apply Hx1, elem_of_app; now left]).
  assert (Hout : forall x, x ∈ cells_of refs o (c1, l) -> x <> cp) by (intros x Hx ->; apply (rep_extra _ _ _ _ _ Hrep1 o _ cp Hg1 Hx); left).
  assert (Hlog : forall w3, log w3 = log w2 -> log w3 = log w ++ name_refs (p_name p)) by (intros w3 ->; now rewrite Elog, Hl1).
  assert (Hchain : forall l' G3, adds l (cp, true) p l' -> G3 = <[o := (c1, l')]> G1 -> forall w3, created w1 G1 extra o l p (cp, true) w3 -> created w G extra o l p (cp, true) w3).
  { intros l' G3 _ _ w3 (G' & c' & l3 & R & Hg' & A & S & L & X). exists G', c', l3. splits; try assumption; [rewrite S; now rewrite Hs1 | rewrite L; now rewrite Hl1 | intros x H; rewrite X by exact H; apply Hx1, elem_of_app; now right]. }
  destruct c1 as [hc |]; cbn [fst snd] in *.
  - destruct Hl as (Ehead & Hhc0 & h & Hh & Hl & Hm). assert (Hne : hc <> cp) by (apply Hout; left).
    eapply pruns_done; [unfold get_hashmap; rewrite Ec, Ehead, Hh; reflexivity |]. eapply pruns_done; [unfold put_pair; rewrite Ec, Hcp; reflexivity |].
    eapply pruns_done; [unfold put_hashmap; cbn [cells set_cells]; rewrite Ehead, lookup_insert_ne, Hh by congruence; reflexivity |]. set (x' := mk_pair _ _ _). set (h' := mk_hashmap _ _ _ _ _ _). set (w3 := set_cells _ _).
    change (NoDup (hc :: (cps l ++ accs (refs o) l))) in Hnd. apply NoDup_cons in Hnd as [Hhl Hnd].
    assert (Hframe : forall c0, c0 <> cp -> c0 <> hc -> cells w3 !! c0 = cells w1 !! c0) by (intros c0 H1 H2; cbn [w3 cells set_cells]; now rewrite !lookup_insert_ne by congruence).
    assert (Hlinked : forall head, linked (cells w1) head l -> linked (cells w3) head l).
    { intros head H. apply (linked_frame (cells w1)); [exact H |]. intros c0 Hc. apply Hframe; [apply Hout; now apply cps_cell |]. intros ->. apply Hhl, elem_of_app. now left. }
    destruct (rep_new_pair w1 w3 G1 extra (Some hc) l cp (next_of_map h) ob (cells w3) Hrep1 Hg1 Hkey Haccs1 Hnew Hcpx Hc0 Hcp Eh El) as [Hrep3 Hadds]; try assumption.
    + cbn [w3 cells set_cells]. rewrite lookup_insert_ne by congruence. apply lookup_insert_eq.
    + cbn [w3 cells set_cells]. rewrite !fmap_insert. rewrite (insert_id _ hc); [rewrite insert_id; [reflexivity |] |]; rewrite ?lookup_insert_ne by congruence; rewrite lookup_fmap; [now rewrite Hcp | now rewrite Hh].
    + cbn [w3 objects set_cells]. now rewrite Eo.
    + intros o' _. cbn [w3 objects set_cells]. now rewrite Eo.
    + intros c0 H1 H2. apply Hframe; congruence.
    + split; cbn [fst snd].
      * splits; [exact Ehead | exact Hhc0 |]. exists h'. split; [cbn [w3 cells set_cells]; apply lookup_insert_eq |]. split.
        -- cbn [linked h' next_of_map]. splits; [reflexivity | exact Hc0 |]. exists x'. split; [cbn [w3 cells set_cells]; rewrite lookup_insert_ne by congruence; apply lookup_insert_eq |].
           split; [split; [now split | exact (proj1 (new_slot_is p Hp))] | now apply Hlinked].
        -- unfold q_maps. rewrite only_at_here. apply (map_but_add h l _ p); [exact Hm |]. apply adds_new_pair. intros H. apply (Hout cp); [now apply cps_cell | reflexivity].
      * apply (accs_in_add _ l _ (cp, true)); [| | apply adds_new_pair; intros H; apply (Hout cp); [now apply cps_cell | reflexivity]]; apply (accs_in_frame (cells w1)); try assumption; intros c0 Hin; apply Hframe.
        -- intros ->. apply Hcpx, elem_of_app. now left.
        -- intros ->. apply (rep_extra _ _ _ _ _ Hrep1 o _ hc Hg1); [left |]. right. apply elem_of_app. now left.
        -- apply Hout. unfold cells_of. rewrite !elem_of_app. now right; right.
        -- intros ->. apply Hhl, elem_of_app. now right.
    + cbv beta. apply (pruns_stops False); [easy |]. eapply pruns_mono; [apply (insert_after_spec w1 w3 G1 extra (Some hc) l (Some hc) _ (cp, true) Hrep3); [| exact Hadds | exact Elog | | reflexivity] |].
      * unfold present in *. rewrite Forall_forall in *. intros x H. destruct (Hpr x H) as [y Hy]. exists y. rewrite Hx1; [exact Hy | apply elem_of_app; now right].
      * intros c0 H. apply Hframe; intros ->; [apply Hcpx, elem_of_app; now right |]. apply (rep_extra _ _ _ _ _ Hrep1 o _ hc Hg1); [left |]. right. apply elem_of_app. now right.
      * intros q w4 [-> H]. exact (Hchain _ _ Hadds eq_refl w4 H).
  - eapply pruns_done; [unfold put_pair; rewrite Ec, Hcp; reflexivity |]. eapply pruns_done; [unfold put_list; cbn [objects set_cells]; rewrite Eo, Ho; reflexivity |]. set (x' := mk_pair _ _ _). set (w3 := set_objects _ _).
    change (NoDup (cps l ++ accs (refs o) l)) in Hnd.
    assert (Hframe : forall c0, c0 <> cp -> cells w3 !! c0 = cells w1 !! c0) by (intros c0 H1; cbn [w3 cells set_cells set_objects]; now rewrite lookup_insert_ne by congruence).
    assert (Hlinked : forall head, linked (cells w1) head l -> linked (cells w3) head l) by (intros head H; apply (linked_frame (cells w1)); [exact H |]; intros c0 Hc; apply Hframe, Hout; now apply cps_cell).
    destruct (rep_new_pair w1 w3 G1 extra None l cp (property_list_cp ob) (mk_object cp (swept ob)) (cells w3) Hrep1 Hg1 Hkey Haccs1 Hnew Hcpx Hc0 Hcp Eh El) as [Hrep3 Hadds]; try assumption.
    + cbn [w3 cells set_cells set_objects]. apply lookup_insert_eq.
    + cbn [w3 cells set_cells set_objects]. rewrite fmap_insert, insert_id; [reflexivity |]. now rewrite lookup_fmap, Hcp.
    + cbn [w3 objects set_objects set_cells]. apply lookup_insert_eq.
    + intros o' Hne. cbn [w3 objects set_objects set_cells]. now rewrite lookup_insert_ne by congruence.
    + intros c0 H1 _. now apply Hframe.
    + split; cbn [fst snd property_list_cp].
      * cbn [linked]. splits; [reflexivity | exact Hc0 |]. exists x'. split; [cbn [w3 cells set_cells set_objects]; apply lookup_insert_eq |]. split; [split; [now split | exact (proj1 (new_slot_is p Hp))] | now apply Hlinked].
      * apply (accs_in_add _ l _ (cp, true)); [| | apply adds_new_pair; intros H; apply (Hout cp); [now apply cps_cell | reflexivity]]; apply (accs_in_frame (cells w1)); try assumption; intros c0 Hin; apply Hframe.
        -- intros ->. apply Hcpx, elem_of_app. now left.
        -- apply Hout. unfold cells_of. rewrite !elem_of_app. now right; right.
    + apply pruns_ret. apply (Hchain _ _ Hadds eq_refl). apply (created_after w1 w3 G1 _ extra o l None _ p (cp, true) Hrep3 eq_refl Hadds Elog) with (G2 := <[o := (None, (cp, (None, Some p)) :: l)]> G1); [| exact Hrep3 | apply kept_refl].
      intros c0 H. apply Hframe. intros ->. apply Hcpx, elem_of_app. now right.
Qed.

Lemma create_property_spec w G extra c l : fresh w G extra l -> G !! o = Some (c, l) ->
  pruns True (ecma_create_property o (p_name p) (p_flags p) (p_value p)) w (fun q w' => created w G extra o l p q w').
Proof.
  intros Hfresh Hg. pose proof (create_in_new_pair_spec w G extra c l Hfresh Hg) as Hnew. pose proof (fresh_rep _ _ _ _ Hfresh) as Hrep.
  destruct (rep_list _ _ _ _ _ Hrep o _ Hg) as (ob & Ho & [Hl _]). cbn [fst snd] in Hl. destruct (rep_nodup _ _ _ _ _ Hrep o _ Hg) as [_ [Hok _]]. cbn [snd] in Hok. pose proof (has_map_run refs _ w G _ o _ ob Hrep Hg Ho) as Hhas. cbn [fst] in Hhas.
  unfold ecma_create_property. eapply pruns_done; [unfold get_list; rewrite Ho; reflexivity |]. change ECMA_NULL_POINTER with JMEM_CP_NULL. destruct (Z.eqb_spec (property_list_cp ob) JMEM_CP_NULL) as [_ | Hn]; [exact Hnew |].
  eapply pruns_done; [exact Hhas |].
  assert (Hfirst : exists first, (if match c with Some _ => true | None => false end then h ← get_hashmap (property_list_cp ob); mret (next_of_map h) else mret (property_list_cp ob)) w = PDONE _ first w /\ linked (cells w) first l /\ l <> []).
  { destruct c as [hc |].
    - destruct Hl as (Ehead & Hc0 & h & Hh & Hl & Hm). exists (next_of_map h). split; [unfold mbind, P_bind, get_hashmap; rewrite Ehead, Hh; reflexivity |]. split; [exact Hl | exact (map_nonempty h l Hm)].
    - exists (property_list_cp ob). split; [reflexivity |]. split; [exact Hl |]. intros ->. exact (Hn Hl). }
  destruct Hfirst as (first & Efirst & Hlinked & Hne). eapply pruns_done; [exact Efirst |]. destruct l as [| [cp a] tl]; [easy |]. pose proof Hlinked as Hlinked0. cbn [linked] in Hlinked. destruct Hlinked as (-> & Hcp0 & x & Hx & [H0 H1] & Ht).
  eapply pruns_done; [unfold get_pair; rewrite Hx; reflexivity |]. destruct (chain_props_cons cp a tl Hok) as (Ok0 & _). destruct a as [[p0 |] b]; cbn [fst snd] in *.
  - rewrite (slot_named _ p0 (Ok0 p0 eq_refl) H0). exact Hnew.
  - destruct H0 as [-> _]. rewrite Z.eqb_refl, (to_name (p_name p) (proj1 Hp)). cbv zeta. fold (new_slot p).
    apply (pruns_stops False); [easy |]. eapply pruns_mono; [exact (create_in_first w G extra c cp b tl x Hfresh Hg Hx) |]. intros r w1 [-> H]. exact H.
Qed.
End Property.



End Create.
