(* ===== verification/PropDelete.v ===== *)
(** * Deletion of properties

    ecma_delete_property takes a property out of its list: it is released, a pair that is
    empty is given back, the hash map and the lookup cache follow. *)
From Stdlib Require Import ZArith Lia Bool List.
From stdpp Require Import base gmap list.
From S2P Require Import Prelude JmemPointers Values Jmem PropNames PropHashmap PropProbing Properties PropState PropMemory PropCache PropMap PropCreate.
Import ListNotations.
#[local] Open Scope Z_scope.

Lemma data_flag t : 0 <= t < 256 -> flag_set t ECMA_PROPERTY_FLAG_DATA = (32 <=? t mod 64).
Proof.
  intros Ht. assert (H : forallb (fun k => let t := Z.of_nat k in Bool.eqb (flag_set t ECMA_PROPERTY_FLAG_DATA) (32 <=? t mod 64)) (seq 0 256) = true) by (vm_compute; reflexivity).
  rewrite forallb_forall in H. specialize (H (Z.to_nat t) ltac:(apply in_seq; lia)). cbv zeta in H. rewrite Z2Nat.id in H by lia. now apply Bool.eqb_prop in H.
Qed.

Section Delete.
Context {PN : PropertyNames} {PH : PropertyHeap}.

(** ** Lists with a property less *)

Lemma contents_app l1 l2 : contents (l1 ++ l2) = contents l1 ++ contents l2.
Proof. unfold contents. now rewrite map_app, concat_app. Qed.

Lemma pair_split l cp a : pair_in l cp = Some a -> exists A B, l = A ++ (cp, a) :: B /\ ~ cp ∈ cps A.
Proof.
  induction l as [| [c x] l IH]; cbn [pair_in]; [discriminate |]. destruct (Z.eqb_spec cp c) as [-> | Hne].
  - intros [= ->]. exists [], l. split; [reflexivity | apply not_elem_of_nil].
  - intros H. destruct (IH H) as (A & B & -> & HA). exists ((c, x) :: A), B. split; [reflexivity |]. cbn [cps map fst]. intros Hin. apply elem_of_cons in Hin as [-> | Hin]; [easy | exact (HA Hin)].
Qed.

Lemma cps_app l1 l2 : cps (l1 ++ l2) = cps l1 ++ cps l2.
Proof. apply map_app. Qed.

Lemma put_split A B cp a a' : ~ cp ∈ cps A -> ~ cp ∈ cps B -> put (A ++ (cp, a) :: B) cp a' = A ++ (cp, a') :: B.
Proof.
  intros HA HB. unfold put. rewrite map_app. cbn [map fst]. rewrite Z.eqb_refl. change (map _ A) with (put A cp a'). change (map _ B) with (put B cp a'). now rewrite !put_out.
Qed.

(** [l'] is [l] without the property [p], which was at [q] *)
Record removes (l : chain) (q : Z * bool) (p : prop) (l' : chain) : Prop := mk_removes {
  removes_contents : exists A B, contents l = A ++ p :: B /\ contents l' = A ++ B;
  removes_at : forall q', prop_at l' q' = if bool_decide (q' = q) then None else prop_at l q'
}.

Lemma removes_put l q p a : NoDup (cps l) -> prop_at l q = Some p -> pair_in l q.1 = Some a -> removes l q p (put l q.1 (aset a q.2 None)).
Proof.
  intros Hnd Hp Ha. constructor.
  - destruct (pair_split l q.1 a Ha) as (A & B & -> & HA). rewrite cps_app in Hnd. cbn [cps map fst] in Hnd. apply NoDup_app in Hnd as (_ & _ & Hnd). apply NoDup_cons in Hnd as [HB _].
    rewrite put_split by assumption. rewrite !contents_app, !contents_cons. unfold prop_at in Hp. rewrite Ha in Hp. destruct a as [a0 a1], q as [cp []]; cbn [aget aset fst snd] in *; subst.
    + exists (contents A ++ option_list a0), (contents B). unfold props_of. cbn [fst snd option_list]. split; [now rewrite <- !app_assoc | now rewrite app_nil_r, <- app_assoc].
    + exists (contents A), (option_list a1 ++ contents B). unfold props_of. cbn [fst snd option_list]. split; reflexivity.
  - intros q'. unfold prop_at. rewrite pair_in_put. destruct (Z.eqb_spec q'.1 q.1) as [E | Hne]; [| rewrite bool_decide_false; [reflexivity | now intros ->]].
    rewrite Ha, E, Ha. destruct q as [cp b], q' as [cp' b'], a as [a0 a1]. cbn [fst snd] in *. subst cp'. destruct b, b'; cbn [aset aget fst snd]; case_bool_decide as E'; try reflexivity; congruence.
Qed.

(** The end of a list is exchanged, in the pair in front of it *)
Lemma linked_cut m m' A pc pa px T : forall head T', linked m head (A ++ (pc, pa) :: T) -> m !! pc = Some (PAIR px) -> ~ pc ∈ cps A -> forall next', m' !! pc = Some (PAIR (set_next px next')) ->
  (forall c, c ∈ cps A -> m' !! c = m !! c) -> linked m' next' T' -> linked m' head (A ++ (pc, pa) :: T').
Proof.
  induction A as [| [c a] A IH]; intros head T' H Hpx HA next' Hpx' Hf HT; cbn [app linked] in *.
  - destruct H as (-> & Hn & x & Hx & [H0 H1] & _). rewrite Hpx in Hx. injection Hx as <-. splits; [reflexivity | exact Hn |]. exists (set_next px next'). split; [exact Hpx' |]. now split.
  - destruct H as (-> & Hn & x & Hx & Hxa & Hl). splits; [reflexivity | exact Hn |]. exists x. split; [rewrite Hf; [exact Hx | left] |]. split; [exact Hxa |].
    apply (IH _ T' Hl Hpx) with (next' := next'); [intros Hin; apply HA; now right | exact Hpx' | intros c0 H; apply Hf; now right | exact HT].
Qed.

Lemma linked_next m A cp a B : forall head, linked m head (A ++ (cp, a) :: B) -> exists x, m !! cp = Some (PAIR x) /\ pair_is x a /\ linked m (next_property_cp x) B.
Proof.
  induction A as [| [c y] A IH]; intros head H; cbn [app linked] in H; destruct H as (-> & _ & x & Hx & Hxa & Hl); [exists x; auto | exact (IH _ Hl)].
Qed.

Lemma perm_middle {X} (a b c d : list X) x : a ++ (b ++ x :: c) ++ d ≡ₚ x :: a ++ (b ++ c) ++ d.
Proof.
  replace (a ++ (b ++ x :: c) ++ d) with ((a ++ b) ++ x :: (c ++ d)) by now rewrite <- !app_assoc. replace (a ++ (b ++ c) ++ d) with ((a ++ b) ++ (c ++ d)) by now rewrite <- !app_assoc.
  symmetry. apply Permutation_middle.
Qed.

(** ** The pair in front *)

Definition previous (start : option Z) (A : chain) : option Z := match last A with Some (c, _) => Some c | None => start end.

Lemma find_previous_run w A cp a B : forall fuel head prev, linked (cells w) head (A ++ (cp, a) :: B) -> ~ cp ∈ cps A -> (length A <= fuel)%nat ->
  find_previous fuel prev head cp w = PDONE _ (Some (previous prev A)) w.
Proof.
  induction A as [| [c y] A IH]; intros fuel head prev H HA Hf; cbn [app linked] in H; destruct H as (-> & Hn & x & Hx & _ & Hl).
  - destruct fuel; cbn [find_previous]; rewrite (proj2 (Z.eqb_neq _ _) Hn), Z.eqb_refl; reflexivity.
  - destruct fuel as [| fuel]; [cbn in Hf; lia |]. cbn [find_previous]. rewrite (proj2 (Z.eqb_neq _ _) Hn). rewrite (proj2 (Z.eqb_neq c cp)) by (intros ->; apply HA; left).
    unfold mbind, P_bind, get_pair. rewrite Hx. rewrite (IH fuel _ (Some c) Hl); [| intros Hin; apply HA; now right | cbn in Hf; lia]. f_equal. f_equal. unfold previous. destruct A as [| [c2 y2] A]; [reflexivity |].
    change (last ((c, y) :: (c2, y2) :: A)) with (last ((c2, y2) :: A)). destruct (last ((c2, y2) :: A)) as [[? ?] |] eqn:E; [reflexivity |]. apply last_None in E. discriminate.
Qed.

(** ** Release *)

(** The calls that release a property, whose byte is [t] *)
Definition release_events (t : Z) (p : prop) : list event :=
  if name_type (p_name p) =? ECMA_DIRECT_STRING_SPECIAL then [FREE_INTERNAL t (name_value (p_name p)) (p_value p)]
  else (if ECMA_IS_DIRECT_STRING (p_name p) then [] else [DEREF_NAME (p_name p)]) ++ (if is_accessor p then [] else [FREE_VALUE (p_value p)]).

Section Rep.
Context (refs : Z -> bool).

Lemma accs_remove o l l' A B p : contents l = A ++ p :: B -> contents l' = A ++ B ->
  exists X Y, accs (refs o) l = X ++ acc_of refs o p ++ Y /\ accs (refs o) l' = X ++ Y.
Proof.
  unfold accs, acc_of. intros -> ->. destruct (refs o); [now exists [], [] |]. rewrite !List.filter_app, !map_app. cbn [List.filter]. eexists _, _. split; [| reflexivity]. f_equal. now destruct (is_accessor p).
Qed.

Lemma map_but_removed q h l l' p : map_but q h l -> prop_at l q = Some p -> removes l q p l' -> map_is h l'.
Proof.
  intros (n & Htable & Hun) Hp [_ Hat]. exists n. split; [| exact Hun]. apply (table_ok_ext n h (fun x => in_use l x /\ x <> q) _ (slot_hash l)); [exact Htable | |].
  - intros x. unfold in_use. rewrite Hat. case_bool_decide as E; [subst x; split; [intros [? H]; discriminate | now intros [_ H]] | tauto].
  - intros x [_ Hne]. unfold slot_hash. rewrite Hat. now rewrite bool_decide_false.
Qed.

(** What gc_free_property leaves: the property is in no row of the cache, and its accessor
    is given back *)
Lemma gc_free_property_run M w G extra o c l q p : rep_m refs M w G extra -> G !! o = Some (c, l) -> prop_at l q = Some p -> (refs o = true -> is_accessor p = false) ->
  exists w1 w2 t, rep_m refs M w1 G extra /\ kept w w1 G G extra /\ cached_at (cells w1) q = false /\ objects w1 = objects w
    /\ ecma_gc_free_property o q false w = PDONE _ tt w2 /\ log w2 = log w1 ++ release_events t p /\ objects w2 = objects w1 /\ lcache w2 = lcache w1
    /\ holding (heap w2) (cell_size <$> cells w2) /\ cells w2 = match acc_of refs o p with [] => cells w1 | a :: _ => delete a (cells w1) end.
Proof.
  intros Hrep Hg Hp Hrefs. destruct (list_memory refs _ w G extra Hrep o _ q p Hg Hp) as [(x & Hx & Hs) Hok]. pose proof Hs as (Hname & Hvalue & cached & Ht). destruct (marked_types p cached _ Hok Ht) as (Hr & Hcached & _ & Htype).
  set (t := types (get_slot x q.2)) in *.
  assert (H1 : exists w1, rep_m refs M w1 G extra /\ kept w w1 G G extra /\ cached_at (cells w1) q = false /\ objects w1 = objects w
    /\ (if ecma_is_property_lcached t then ecma_lcache_invalidate o (names_cp (get_slot x q.2)) q else mret tt) w = PDONE _ tt w1).
  { assert (Eca : cached_at (cells w) q = cached) by (unfold cached_at; rewrite Hx; exact Hcached). rewrite Hcached. destruct cached.
    - rewrite Hname. destruct (lcache_invalidate_spec refs M w G extra o _ q p Hrep Hg Hp Eca) as (rows & E & Hcache). eexists. destruct (rep_mark refs M w G extra Hrep o _ q p false rows Hg Hp Hcache) as [Hrep1 Hk1].
      split; [exact Hrep1 |]. split; [exact Hk1 |]. split; [| split; [reflexivity | exact E]]. cbn [cells set_lcache set_cells]. rewrite (cached_marked _ _ _ p); [now rewrite bool_decide_true | exact Hok | now exists x].
    - exists w. split; [exact Hrep |]. split; [apply kept_refl |]. split; [exact Eca | now split]. }
  destruct H1 as (w1 & Hrep1 & Hk1 & Hc1 & Ho1 & E1). exists w1.
  assert (Egoal : forall w2, (if ECMA_PROPERTY_IS_RAW t then
      (if ECMA_PROPERTY_GET_NAME_TYPE t =? ECMA_DIRECT_STRING_PTR then call (DEREF_NAME (jmem_decompress_pointer (names_cp (get_slot x q.2)))) else mret tt);;
      if flag_set t ECMA_PROPERTY_FLAG_DATA then call (FREE_VALUE (values (get_slot x q.2)))
      else jmem_heap_free_block (values (get_slot x q.2)) sizeof_ecma_getter_setter_pointers_t
    else if t =? ECMA_PROPERTY_TYPE_DELETED then mret tt else call (FREE_INTERNAL t (names_cp (get_slot x q.2)) (values (get_slot x q.2)))) w1 = PDONE _ tt w2 ->
    ecma_gc_free_property o q false w = PDONE _ tt w2).
  { intros w2 H. unfold ecma_gc_free_property, mbind at 1, P_bind at 1, get_property, mbind at 1, P_bind at 1, get_pair. rewrite Hx. unfold mret at 1, P_ret at 1. fold t. unfold mbind at 1, P_bind at 1. rewrite E1. exact H. }
  destruct (name_view (p_name p) (proj1 Hok)) as (Hnt & _ & _ & Hd). pose proof (rep_heap _ _ _ _ _ Hrep1) as Hheap1.
  assert (Hsum : t = p_flags p + mark cached + 64 * name_type (p_name p)) by exact Ht. pose proof Hok as (_ & Hf & Hlow & Hsp).
  assert (Hm : 0 <= mark cached <= 16) by (unfold mark, ECMA_PROPERTY_FLAG_LCACHED; destruct cached; lia).
  assert (Hlt : p_flags p + mark cached < 64) by (clear Hsum Ht Hr; Z.div_mod_to_equations; lia).
  assert (Hdata : flag_set t ECMA_PROPERTY_FLAG_DATA = negb (is_accessor p)).
  { rewrite data_flag by exact Hr. unfold is_accessor, ECMA_PROPERTY_FLAG_DATA. rewrite Hsum. destruct (Z.ltb_spec (p_flags p) 32), (Z.leb_spec 32 ((p_flags p + mark cached + 64 * name_type (p_name p)) mod 64)); try reflexivity; Z.div_mod_to_equations; lia. }
  unfold release_events. destruct (Z.eqb_spec (name_type (p_name p)) ECMA_DIRECT_STRING_SPECIAL) as [Esp | Esp].
  - specialize (Hsp Esp). assert (Eacc : acc_of refs o p = []) by (unfold acc_of, is_accessor, ECMA_PROPERTY_FLAG_DATA; rewrite (proj2 (Z.ltb_ge _ _)) by lia; now destruct (refs o)).
    rewrite Eacc. rewrite Esp in Hsum. change ECMA_DIRECT_STRING_SPECIAL with 3 in Hsum.
    assert (Hraw : ECMA_PROPERTY_IS_RAW t = false) by (unfold ECMA_PROPERTY_IS_RAW; change (Z.shiftl ECMA_DIRECT_STRING_SPECIAL ECMA_PROPERTY_NAME_TYPE_SHIFT) with 192; apply Z.ltb_ge; lia).
    rewrite Hraw in Egoal. change ECMA_PROPERTY_TYPE_DELETED with 200 in Egoal. rewrite (proj2 (Z.eqb_neq t 200)) in Egoal by lia. rewrite Hname, Hvalue in Egoal.
    eexists _, t. split; [exact Hrep1 | split; [exact Hk1 | split; [exact Hc1 | split; [exact Ho1 |]]]]. splits; [apply Egoal; reflexivity | reflexivity | reflexivity | reflexivity | exact Hheap1 | reflexivity].
  - change ECMA_DIRECT_STRING_SPECIAL with 3 in Esp.
    assert (Hraw : ECMA_PROPERTY_IS_RAW t = true) by (unfold ECMA_PROPERTY_IS_RAW; change (Z.shiftl ECMA_DIRECT_STRING_SPECIAL ECMA_PROPERTY_NAME_TYPE_SHIFT) with 192; apply Z.ltb_lt; lia).
    rewrite Hraw, Htype, Hdata, Hname, Hvalue in Egoal.
    set (dn := if ECMA_IS_DIRECT_STRING (p_name p) then [] else [DEREF_NAME (p_name p)]).
    set (wl := mk_pworld (cells w1) (objects w1) (lcache w1) (ecma_prop_hashmap_alloc_state w1) (ECMA_STATUS_HIGH_PRESSURE_GC w1) (heap w1) (log w1 ++ dn)).
    assert (E2 : (if name_type (p_name p) =? ECMA_DIRECT_STRING_PTR then call (DEREF_NAME (jmem_decompress_pointer (name_value (p_name p)))) else mret tt) w1 = PDONE _ tt wl).
    { unfold wl, dn. destruct (ECMA_IS_DIRECT_STRING (p_name p)).
      - destruct Hd as (Hd & _). rewrite (proj2 (Z.eqb_neq _ _)) by (unfold ECMA_DIRECT_STRING_PTR; lia). rewrite app_nil_r. now destruct w1.
      - destruct Hd as (-> & ->). reflexivity. }
    unfold mbind at 1, P_bind at 1 in Egoal. rewrite E2 in Egoal. destruct (is_accessor p) eqn:Ea; cbn [negb] in Egoal.
    + assert (Er : refs o = false) by (destruct (refs o); [now specialize (Hrefs eq_refl) | reflexivity]).
      assert (Eacc : acc_of refs o p = [p_value p]) by (unfold acc_of; now rewrite Er, Ea). rewrite Eacc.
      assert (Hin : exists y z, cells w1 !! p_value p = Some (ACCESSORS y z)).
      { destruct (rep_list _ _ _ _ _ Hrep1 o _ Hg) as (ob & _ & [_ Haccs]). cbn [snd] in Haccs. unfold accs_in in Haccs. rewrite Forall_forall in Haccs. apply Haccs. unfold accs. rewrite Er. apply list_elem_of_In, in_map, List.filter_In. split; [exact (prop_in l q p Hp) | exact Ea]. }
      destruct Hin as (y & z & Hcell). destruct (free_holding _ _ (p_value p) sizeof_ecma_getter_setter_pointers_t Hheap1) as (h' & Efree & Hh'); [now rewrite lookup_fmap, Hcell |].
      eexists _, t. split; [exact Hrep1 | split; [exact Hk1 | split; [exact Hc1 | split; [exact Ho1 |]]]]. splits; [apply Egoal; unfold jmem_heap_free_block; cbn [wl heap]; rewrite Efree; reflexivity | | reflexivity | reflexivity | | reflexivity].
      * cbn [wl log set_cells set_heap]. now rewrite app_nil_r.
      * cbn [heap cells set_cells set_heap wl]. now rewrite fmap_delete.
    + assert (Eacc : acc_of refs o p = []) by (unfold acc_of; rewrite Ea; now destruct (refs o)). rewrite Eacc.
      eexists _, t. split; [exact Hrep1 | split; [exact Hk1 | split; [exact Hc1 | split; [exact Ho1 |]]]]. splits; [apply Egoal; reflexivity | | reflexivity | reflexivity | exact Hheap1 | reflexivity].
      cbn [wl log]. now rewrite <- app_assoc.
Qed.

(** ** The property leaves its list *)

Lemma rep_remove M M' w1 w2 G extra o c l q p a x s : rep_m refs M w1 G extra -> G !! o = Some (c, l) -> prop_at l q = Some p -> pair_in l q.1 = Some a -> cached_at (cells w1) q = false ->
  objects w2 = objects w1 -> lcache w2 = lcache w1 -> holding (heap w2) (cell_size <$> cells w2) -> cells w2 = match acc_of refs o p with [] => cells w1 | b :: _ => delete b (cells w1) end ->
  cells w1 !! q.1 = Some (PAIR x) -> slot_is s None ->
  (forall o', o' <> o -> M' o' = M o') -> (forall hc h, c = Some hc -> M o h l -> M' o h (put l q.1 (aset a q.2 None))) ->
  rep_m refs M' (set_cells (<[q.1 := PAIR (set_slot x q.2 s)]> (cells w2)) w2) (<[o := (c, put l q.1 (aset a q.2 None))]> G) extra
    /\ cells w2 !! q.1 = Some (PAIR x) /\ forall cp, cp ∈ extra -> cells w2 !! cp = cells w1 !! cp.
Proof.
  intros Hrep Hg Hp Ha Hcq Hob Hlc Hheap Hcells Hx Hs HM' HMo. set (l' := put l q.1 (aset a q.2 None)). set (w3 := set_cells _ w2). destruct (rep_nodup _ _ _ _ _ Hrep o _ Hg) as [Hnd [Hok Hkeys]]. cbn [snd] in Hok, Hkeys.
  pose proof (cps_nodup refs o _ Hnd) as Hcps. cbn [snd] in Hcps. destruct (removes_put l q p a Hcps Hp Ha) as [(A & B & EA & EB) Hat]. fold l' in EB, Hat.
  destruct (accs_remove o l l' A B p EA EB) as (X & Y & EX & EY). assert (Hcps' : cps l' = cps l) by apply put_cps. pose proof (prop_at_cps _ _ _ Hp) as Hq.
  unfold cells_of in Hnd. cbn [fst snd] in Hnd. rewrite EX in Hnd.
  assert (Hin : q.1 ∈ cells_of refs o (c, l)) by now apply cps_cell.
  assert (Hsub : forall cp, cp ∈ cells_of refs o (c, l) <-> cp ∈ cells_of refs o (c, l') \/ cp ∈ acc_of refs o p) by (intros cp; unfold cells_of; cbn [fst snd]; rewrite EX, EY, Hcps', !elem_of_app; tauto).
  assert (Hdisj : forall cp, cp ∈ cells_of refs o (c, l') -> ~ cp ∈ acc_of refs o p).
  { intros cp H Hacc. unfold cells_of in H. cbn [fst snd] in H. rewrite EY, Hcps' in H. apply NoDup_app in Hnd as (_ & D1 & Hnd). apply NoDup_app in Hnd as (_ & D2 & Hnd). apply NoDup_app in Hnd as (_ & D3 & Hnd). apply NoDup_app in Hnd as (_ & D4 & _).
    rewrite !elem_of_app in H. destruct H as [H | [H | [H | H]]]; [apply (D1 cp H) | apply (D2 cp H) | apply (D3 cp H) | exact (D4 cp Hacc H)]; rewrite !elem_of_app; tauto. }
  assert (H2 : forall cp, ~ cp ∈ acc_of refs o p -> cells w2 !! cp = cells w1 !! cp).
  { intros cp H. rewrite Hcells. destruct (acc_of refs o p) as [| b t]; [reflexivity |]. apply lookup_delete_ne. intros ->. apply H. left. }
  assert (H2acc : forall cp, cp ∈ acc_of refs o p -> cells w2 !! cp = None).
  { intros cp H. rewrite Hcells. unfold acc_of in *. destruct (refs o); [now apply elem_of_nil in H |]. destruct (is_accessor p); [| now apply elem_of_nil in H]. apply list_elem_of_singleton in H as ->. apply lookup_delete_eq. }
  assert (H2q : cells w2 !! q.1 = Some (PAIR x)) by (rewrite H2; [exact Hx |]; apply Hdisj; unfold cells_of; cbn [snd]; rewrite Hcps', !elem_of_app; tauto).
  assert (H3 : forall cp, cp <> q.1 -> cells w3 !! cp = cells w2 !! cp) by (intros cp Hne; cbn [w3 cells set_cells]; now apply lookup_insert_ne).
  split; [| split; [exact H2q | intros cp Hcp; apply H2; intros H; apply (rep_extra _ _ _ _ _ Hrep o _ cp Hg); [apply Hsub; now right | exact Hcp]]].
  destruct (rep_list _ _ _ _ _ Hrep o _ Hg) as (ob & Ho & [Hl Haccs]). cbn [fst snd] in Hl, Haccs.
  assert (Hlinked : forall head, linked (cells w1) head l -> linked (cells w3) head l').
  { intros head H. assert (Hl2 : linked (cells w2) head l) by (apply (linked_frame (cells w1)); [exact H |]; intros cp Hcp; apply H2, Hdisj; unfold cells_of; cbn [fst snd]; rewrite Hcps', !elem_of_app; tauto).
    apply (linked_put _ _ x); [exact Hl2 | exact Hcps | exact H2q | now destruct q as [? []] |]. destruct (linked_pair _ _ _ _ _ Hl2 Ha) as (x0 & Hx0 & P0 & P1). rewrite H2q in Hx0. injection Hx0 as <-. split; destruct q as [cp []]; assumption. }
  apply (list_change refs M M' w1 w3 G o (c, l) (c, l') extra extra ob); try assumption.
  - cbn [w3 heap cells set_cells]. rewrite fmap_insert, insert_id; [exact Hheap |]. now rewrite lookup_fmap, H2q.
  - cbn [w3 objects set_cells]. congruence.
  - split; cbn [fst snd].
    + destruct c as [hc |]; [| now apply Hlinked]. destruct Hl as (Ehead & Hc0 & h & Hh & Hl & Hm). splits; [exact Ehead | exact Hc0 |]. exists h.
      split; [rewrite H3, H2; [exact Hh | apply Hdisj; left | intros ->; congruence] |]. split; [now apply Hlinked | now apply (HMo hc)].
    + rewrite EY. rewrite EX in Haccs. unfold accs_in in *. apply Forall_app in Haccs as [F1 F2]. apply Forall_app in F2 as [_ F2].
      assert (F : Forall (fun b => exists y z, cells w1 !! b = Some (ACCESSORS y z)) (X ++ Y)) by now apply Forall_app. rewrite Forall_forall in F |- *. intros b Hb. destruct (F b Hb) as (y & z & E). exists y, z.
      rewrite H3, H2; [exact E | apply Hdisj; unfold cells_of; cbn [fst snd]; rewrite EY, !elem_of_app in *; tauto | intros ->; congruence].
  - intros o' Hne. split; [cbn [w3 objects set_cells]; now rewrite Hob | now apply HM'].
  - intros cp H1 H1'. rewrite H3 by (intros ->; easy). apply H2. intros H. apply H1, Hsub. now right.
  - intros cp y H. assert (E : exists y0, cells w2 !! cp = Some y0) by (cbn [w3 cells set_cells] in H; apply lookup_insert_Some in H as [[<- _] | [_ H]]; eauto). destruct E as [y0 E].
    assert (N : ~ cp ∈ acc_of refs o p) by (intros Hin'; rewrite (H2acc cp Hin') in E; discriminate). split; [exists y0; now rewrite <- H2 |]. intros [Hc | Hc]; [left | now right]. apply Hsub in Hc as [Hc | Hc]; [exact Hc | easy].
  - intros cp [H | H]; [left; apply Hsub; now left | now right].
  - intros cp H Hxx. apply (rep_extra _ _ _ _ _ Hrep o _ cp Hg); [apply Hsub; now left | exact Hxx].
  - unfold cells_of. cbn [fst snd]. rewrite EY, Hcps'. apply NoDup_app in Hnd as (N1 & D1 & Hnd). apply NoDup_app in Hnd as (N2 & D2 & Hnd). apply NoDup_app in Hnd as (N3 & D3 & Hnd). apply NoDup_app in Hnd as (_ & _ & N4).
    apply NoDup_app. split; [exact N1 |]. split; [intros cp H; specialize (D1 cp H); rewrite !elem_of_app in *; tauto |]. apply NoDup_app. split; [exact N2 |]. split; [intros cp H; specialize (D2 cp H); rewrite !elem_of_app in *; tauto |].
    apply NoDup_app. split; [exact N3 |]. split; [intros cp H; specialize (D3 cp H); rewrite !elem_of_app in *; tauto | exact N4].
  - split; cbn [snd]; rewrite EB; rewrite EA in Hok, Hkeys.
    + apply Forall_app in Hok as [F1 F2]. apply Forall_cons in F2 as [_ F2]. now apply Forall_app.
    + rewrite map_app in *. cbn [map] in Hkeys. apply NoDup_app in Hkeys as (K1 & K2 & K3). apply NoDup_cons in K3 as [_ K3]. apply NoDup_app. split; [exact K1 |]. split; [| exact K3]. intros y Hy Hy2. apply (K2 y Hy). now right.
  - cbn [w3 lcache set_cells]. rewrite Hlc.
    assert (Hca : forall q' p', prop_at l q' = Some p' -> q' <> q -> cached_at (cells w3) q' = cached_at (cells w1) q').
    { intros q' p' Hp' Hne. unfold cached_at. destruct (Z.eq_dec q'.1 q.1) as [E | Hne1].
      - rewrite E, Hx. cbn [w3 cells set_cells]. rewrite lookup_insert_eq, get_set_slot. destruct (Bool.eqb q.2 q'.2) eqn:Eb; [| reflexivity]. apply Bool.eqb_prop in Eb. destruct Hne. destruct q, q'. cbn in *. congruence.
      - rewrite H3 by exact Hne1. rewrite H2; [reflexivity |]. apply Hdisj. unfold cells_of. cbn [fst snd]. rewrite Hcps', !elem_of_app. right. left. exact (prop_at_cps _ _ _ Hp'). }
    apply (cache_change (cells w1) _ _ G o (c, l)); [exact (rep_cache _ _ _ _ _ Hrep) | exact Hg | | |]; cbn [snd].
    + intros q' p' Hp' Hc. assert (Hne : q' <> q) by (intros ->; congruence). rewrite Hat, bool_decide_false by exact Hne. split; [exact Hp' | now rewrite (Hca q' p')].
    + intros q' p' Hp' Hc. rewrite Hat in Hp'. case_bool_decide as Hne; [discriminate |]. split; [exact Hp' | now rewrite <- (Hca q' p')].
    + intros o' g0 q' p' Hne Hg0 Hp'. pose proof (cps_cell refs o' g0 _ (prop_at_cps _ _ _ Hp')) as Hin'. destruct (rep_other _ _ _ _ _ Hrep o o' _ g0 q'.1 Hg Hg0 Hne Hin') as [F1 F2].
      apply cached_frame. rewrite H3 by (intros E; rewrite E in F1; easy). apply H2. intros H. apply F1, Hsub. now right.
Qed.

(** ** An empty pair is given back *)

Definition with_next (h : ecma_property_hashmap_t) (next : Z) : ecma_property_hashmap_t := mk_hashmap next (max_property_count h) (null_count h) (unused_count h) (pair_list h) (bits h).

Lemma map_is_next h l l' next : map_is h l -> (forall q, prop_at l' q = prop_at l q) -> map_is (with_next h next) l'.
Proof.
  intros (n & Htable & Hun) Hat. exists n. split; [| exact Hun]. apply (table_ok_ext n _ (in_use l) _ (slot_hash l)).
  - destruct Htable as [[? ? ? ?] [? ? ?] ? ? ?]. constructor; try assumption; constructor; assumption.
  - intros x. unfold in_use. now rewrite Hat.
  - intros x _. unfold slot_hash. now rewrite Hat.
Qed.

Lemma pair_in_app A l2 cp : pair_in (A ++ l2) cp = match pair_in A cp with Some x => Some x | None => pair_in l2 cp end.
Proof. induction A as [| [c x] A IH]; [reflexivity |]. cbn [app pair_in]. destruct (cp =? c); [reflexivity | exact IH]. Qed.

Lemma drop_pair A B cp : NoDup (cps (A ++ (cp, (None, None)) :: B)) ->
  contents (A ++ (cp, (None, None)) :: B) = contents (A ++ B) /\ forall q, prop_at (A ++ B) q = prop_at (A ++ (cp, (None, None)) :: B) q.
Proof.
  intros Hnd. split; [now rewrite !contents_app, contents_cons |]. intros q. unfold prop_at. rewrite !pair_in_app. cbn [pair_in]. destruct (pair_in A q.1) as [x |] eqn:E; [reflexivity |].
  destruct (Z.eqb_spec q.1 cp) as [Eq | _]; [| reflexivity]. rewrite cps_app in Hnd. cbn [cps map fst] in Hnd. apply NoDup_app in Hnd as (_ & _ & Hnd). apply NoDup_cons in Hnd as [HB _].
  destruct (pair_in B q.1) as [y |] eqn:EB; [apply pair_in_cps in EB; rewrite Eq in EB; easy |]. now destruct (q.2).
Qed.

(** The world after the pair in front was changed *)
Lemma unlink_run M w G extra o c A cp a B ob next : rep_m refs M w G extra -> G !! o = Some (c, A ++ (cp, a) :: B) -> objects w !! o = Some ob -> linked (cells w) next B ->
  exists w', unlink_pair o (previous c A) next w = PDONE _ tt w' /\ heap w' = heap w /\ lcache w' = lcache w /\ log w' = log w /\ cell_size <$> cells w' = cell_size <$> cells w
    /\ (exists ob', objects w' !! o = Some ob' /\ forall m', (forall x, x <> cp -> m' !! x = cells w' !! x) ->
          match c with
          | None => linked m' (property_list_cp ob') (A ++ B)
          | Some hc => property_list_cp ob' = hc /\ hc <> JMEM_CP_NULL /\ exists h next', cells w !! hc = Some (HASHMAP h) /\ m' !! hc = Some (HASHMAP (with_next h next')) /\ linked m' next' (A ++ B)
          end)
    /\ (forall o', o' <> o -> objects w' !! o' = objects w !! o') /\ (forall x, ~ x ∈ cells_of refs o (c, A ++ (cp, a) :: B) -> cells w' !! x = cells w !! x)
    /\ (forall x, x ∈ accs (refs o) (A ++ (cp, a) :: B) -> cells w' !! x = cells w !! x) /\ (forall q, cached_at (cells w') q = cached_at (cells w) q).
Proof.
  intros Hrep Hg Ho HB. destruct (rep_list _ _ _ _ _ Hrep o _ Hg) as (ob0 & Ho0 & [Hl _]). rewrite Ho in Ho0. injection Ho0 as <-. cbn [fst snd] in Hl. destruct (rep_nodup _ _ _ _ _ Hrep o _ Hg) as [Hnd _].
  unfold cells_of in Hnd. cbn [fst snd] in Hnd. apply NoDup_app in Hnd as (_ & D1 & Hnd). apply NoDup_app in Hnd as (Hcps & D2 & _). rewrite cps_app in Hcps. cbn [cps map fst] in Hcps. apply NoDup_app in Hcps as (NA & DA & HcpB). apply NoDup_cons in HcpB as [HcpB NB].
  assert (HcpA : ~ cp ∈ cps A) by (intros H; apply (DA cp H); left).
  clear HcpA. assert (HcpA : ~ cp ∈ cps A) by (intros H; apply (DA cp H); left). destruct A as [| [pc pa] A0 _] using rev_ind.
  - cbn [app] in *. unfold previous. cbn [last]. destruct c as [hc |].
    + destruct Hl as (Ehead & Hc0 & h & Hh & Hl & _). assert (Hhc : ~ hc ∈ cps ((cp, a) :: B) ++ accs (refs o) ((cp, a) :: B)) by (apply (D1 hc); left).
      exists (set_cells (<[hc := HASHMAP (with_next h next)]> (cells w)) w). split; [unfold unlink_pair, mbind, P_bind, get_cell; rewrite Hh; unfold put_hashmap; rewrite Hh; reflexivity |].
      split; [reflexivity |]. split; [reflexivity |]. split; [reflexivity |]. split; [cbn [cells set_cells]; rewrite fmap_insert; apply insert_id; now rewrite lookup_fmap, Hh |].
      split; [exists ob; split; [exact Ho |]; intros m' Hm'; split; [exact Ehead | split; [exact Hc0 |]]; exists h, next; split; [exact Hh |] |].
      { cbn [cells set_cells] in Hm'. split; [rewrite Hm'; [apply lookup_insert_eq | intros ->; apply Hhc, elem_of_app; left; left] |]. apply (linked_frame (cells w)); [exact HB |]. intros x Hx. rewrite Hm' by (intros ->; easy).
        apply lookup_insert_ne. intros <-. apply Hhc, elem_of_app. left. right. exact Hx. }
      split; [reflexivity |]. split; [intros x Hx; apply lookup_insert_ne; intros <-; apply Hx; left |]. split; [intros x Hx; apply lookup_insert_ne; intros <-; apply Hhc, elem_of_app; now right |].
      intros q. unfold cached_at. cbn [cells set_cells]. destruct (decide (q.1 = hc)) as [-> | Hne]; [now rewrite lookup_insert_eq, Hh | now rewrite lookup_insert_ne by congruence].
    + exists (set_objects (<[o := mk_object next (swept ob)]> (objects w)) w). split; [unfold unlink_pair, put_list; rewrite Ho; reflexivity |]. split; [reflexivity |]. split; [reflexivity |]. split; [reflexivity |]. split; [reflexivity |].
      split; [eexists; split; [apply lookup_insert_eq |]; intros m' Hm'; cbn [property_list_cp]; apply (linked_frame (cells w)); [exact HB |]; intros x Hx; apply Hm'; now intros -> |].
      split; [intros o' Hne; cbn [objects set_objects]; now rewrite lookup_insert_ne by congruence |]. split; [reflexivity |]. split; reflexivity.
  - assert (Eprev : previous c (A0 ++ [(pc, pa)]) = Some pc) by (unfold previous; now rewrite last_snoc). rewrite Eprev. rewrite <- app_assoc in *. cbn [app] in *.
    assert (Hhead : exists head, linked (cells w) head (A0 ++ (pc, pa) :: (cp, a) :: B)) by (destruct c as [hc |]; [destruct Hl as (_ & _ & h & _ & Hl & _) |]; eauto). destruct Hhead as [head Hlk].
    destruct (linked_next _ _ _ _ _ _ Hlk) as (px & Hpx & _ & _). rewrite cps_app in NA, DA, HcpA. cbn [cps map fst] in NA, DA, HcpA. apply NoDup_app in NA as (_ & NA & _).
    assert (HpcA : ~ pc ∈ cps A0) by (intros H; apply (NA pc H); left). assert (Hpcp : pc <> cp) by (intros ->; apply HcpA, elem_of_app; right; left).
    assert (HpcB : ~ pc ∈ cps B) by (intros H; apply (DA pc); [apply elem_of_app; right; left | now right]).
    assert (Hpc : pc ∈ cps (A0 ++ (pc, pa) :: (cp, a) :: B)) by (rewrite cps_app; apply elem_of_app; right; left).
    exists (set_cells (<[pc := PAIR (set_next px next)]> (cells w)) w). split; [unfold unlink_pair, mbind, P_bind, get_cell; rewrite Hpx; unfold put_pair; rewrite Hpx; reflexivity |].
    split; [reflexivity |]. split; [reflexivity |]. split; [reflexivity |]. split; [cbn [cells set_cells]; rewrite fmap_insert; apply insert_id; now rewrite lookup_fmap, Hpx |].
    assert (Hcut : forall head m', linked (cells w) head (A0 ++ (pc, pa) :: (cp, a) :: B) -> (forall x, x <> cp -> m' !! x = <[pc := PAIR (set_next px next)]> (cells w) !! x) -> linked m' head (A0 ++ (pc, pa) :: B)).
    { intros hd m' Hlk' Hm'. apply (linked_cut (cells w) m' A0 pc pa px _ hd B Hlk' Hpx HpcA next); [rewrite Hm' by exact Hpcp; apply lookup_insert_eq | |].
      - intros x Hx. rewrite Hm'; [apply lookup_insert_ne; now intros <- |]. intros ->. apply HcpA, elem_of_app. now left.
      - apply (linked_frame (cells w)); [exact HB |]. intros x Hx. rewrite Hm' by (intros ->; easy). apply lookup_insert_ne. now intros <-. }
    split; [exists ob; split; [exact Ho |]; intros m' Hm'; cbn [cells set_cells] in Hm' |].
    { destruct c as [hc |]; [| now apply Hcut]. destruct Hl as (Ehead & Hc0 & h & Hh & Hl & _). split; [exact Ehead |]. split; [exact Hc0 |]. exists h, (next_of_map h). split; [exact Hh |]. split; [| now apply Hcut].
      rewrite Hm'; [rewrite lookup_insert_ne; [destruct h; exact Hh | intros ->; congruence] |]. intros ->. apply (D1 cp); [left |]. apply elem_of_app. left. rewrite cps_app. apply elem_of_app. right. right. left. }
    split; [reflexivity |]. split; [intros x Hx; apply lookup_insert_ne; intros <-; apply Hx; rewrite <- app_assoc; apply cps_cell; exact Hpc |].
    split; [intros x Hx; apply lookup_insert_ne; intros <-; rewrite <- app_assoc in Hx; now apply (D2 pc Hpc) |].
    intros q. unfold cached_at. cbn [cells set_cells]. destruct (decide (q.1 = pc)) as [-> | Hne]; [rewrite lookup_insert_eq, Hpx; now destruct q.2 | now rewrite lookup_insert_ne by congruence].
Qed.

Lemma rep_unlink M w G extra o c A cp B : rep_m refs M w G extra -> G !! o = Some (c, A ++ (cp, (None, None)) :: B) -> (forall h next, M o h (A ++ (cp, (None, None)) :: B) -> M o (with_next h next) (A ++ B)) ->
  exists next w', (unlink_pair o (previous c A) next;; jmem_heap_free_block cp sizeof_ecma_property_pair_t) w = PDONE _ tt w' /\ rep_m refs M w' (<[o := (c, A ++ B)]> G) extra /\ log w' = log w
    /\ (forall x, x ∈ extra -> cells w' !! x = cells w !! x) /\ exists px, cells w !! cp = Some (PAIR px) /\ next = next_property_cp px.
Proof.
  intros Hrep Hg HM. set (l := A ++ (cp, (None, None)) :: B) in *. destruct (rep_list _ _ _ _ _ Hrep o _ Hg) as (ob & Ho & [Hl Haccs]). cbn [fst snd] in Hl, Haccs. destruct (rep_nodup _ _ _ _ _ Hrep o _ Hg) as [Hnd Hok]. cbn [snd] in Hok.
  pose proof (cps_nodup refs o _ Hnd) as Hcps. cbn [snd] in Hcps. destruct (drop_pair A B cp Hcps) as [Econtents Hat]. fold l in Econtents, Hat. destruct (list_linked refs M w G extra o _ Hrep Hg) as [head Hlk]. cbn [snd] in Hlk.
  destruct (linked_next _ _ _ _ _ _ Hlk) as (px & Hpx & _ & HB). destruct (unlink_run M w G extra o c A cp _ B ob (next_property_cp px) Hrep Hg Ho HB) as (w1 & E1 & Hheap & Hlc & Hlog & Hsize & (ob' & Hob' & Hlist) & Hrest & Hframe & Haccf & Hca). fold l in Hframe, Haccf.
  assert (Hcp1 : (cell_size <$> cells w1) !! cp = Some sizeof_ecma_property_pair_t) by (rewrite Hsize, lookup_fmap, Hpx; reflexivity).
  pose proof (rep_heap _ _ _ _ _ Hrep) as Hheap0. rewrite <- Hheap, <- Hsize in Hheap0. destruct (free_holding _ _ _ _ Hheap0 Hcp1) as (heap' & Efree & Hheap').
  exists (next_property_cp px), (set_cells (delete cp (cells w1)) (set_heap heap' w1)). split; [unfold mbind, P_bind; rewrite E1; unfold jmem_heap_free_block; rewrite Efree; reflexivity |].
  assert (Eaccs : accs (refs o) (A ++ B) = accs (refs o) l) by (unfold accs; now rewrite Econtents).
  assert (Hcl : forall x, x ∈ cells_of refs o (c, l) <-> x = cp \/ x ∈ cells_of refs o (c, A ++ B)).
  { intros x. unfold cells_of. cbn [fst snd]. rewrite Eaccs. unfold l. rewrite !cps_app. cbn [cps map fst]. rewrite !elem_of_app, elem_of_cons. tauto. }
  assert (Hin : cp ∈ cells_of refs o (c, l)) by (apply Hcl; now left).
  assert (Hnd' : NoDup (cp :: cells_of refs o (c, A ++ B))).
  { assert (Hperm : cells_of refs o (c, l) ≡ₚ cp :: cells_of refs o (c, A ++ B)); [| now rewrite <- Hperm]. unfold cells_of. cbn [fst snd]. rewrite Eaccs. replace (cps l) with (cps A ++ cp :: cps B) by (unfold l; now rewrite cps_app). rewrite cps_app. apply perm_middle. }
  apply NoDup_cons in Hnd' as [Hcpn Hnd'].
  assert (Hd : forall x, x <> cp -> delete cp (cells w1) !! x = cells w1 !! x) by (intros x Hne; now apply lookup_delete_ne).
  split; [| split; [exact Hlog | split; [| exists px; now split]]].
  2: { intros x Hx. cbn [cells set_cells set_heap]. assert (N : ~ x ∈ cells_of refs o (c, l)) by (intros H; exact (rep_extra _ _ _ _ _ Hrep o _ x Hg H Hx)). rewrite Hd by (intros ->; easy). now apply Hframe. }
  apply (list_change refs M M w _ G o (c, l) (c, A ++ B) extra extra ob'); cbn [heap cells objects lcache set_cells set_heap]; try assumption.
  - now rewrite fmap_delete.
  - split; cbn [fst snd].
    + specialize (Hlist _ Hd). destruct c as [hc |]; [| exact Hlist]. destruct Hlist as (E & Hc0 & h & next' & Hh & Hm' & Hlk'). splits; [exact E | exact Hc0 |]. exists (with_next h next'). split; [exact Hm' |]. split; [exact Hlk' |].
      destruct Hl as (_ & _ & h0 & Hh0 & _ & Hm). assert (hc = hc) by reflexivity. rewrite Hh in Hh0. injection Hh0 as <-. now apply HM.
    + rewrite Eaccs. unfold accs_in in *. rewrite Forall_forall in *. intros x Hx. rewrite Hd; [rewrite Haccf by exact Hx; now apply Haccs |]. intros ->. apply Hcpn. unfold cells_of. cbn [fst snd]. rewrite Eaccs, !elem_of_app. tauto.
  - intros o' Hne. split; [now apply Hrest | reflexivity].
  - intros x Hx _. rewrite Hd by (intros ->; easy). now apply Hframe.
  - intros x y Hy. apply lookup_delete_Some in Hy as [Hne Hy]. split; [| rewrite Hcl; intros [[H | H] | H]; [congruence | now left | now right]].
    assert (E : (cell_size <$> cells w1) !! x = Some (cell_size y)) by (rewrite lookup_fmap, Hy; reflexivity). rewrite Hsize, lookup_fmap in E. destruct (cells w !! x) as [x0 |]; [now exists x0 | discriminate].
  - intros x [H | H]; [left; apply Hcl; now right | now right].
  - intros x H Hx. apply (rep_extra _ _ _ _ _ Hrep o _ x Hg); [apply Hcl; now right | exact Hx].
  - unfold chain_ok. cbn [snd]. rewrite <- Econtents. exact Hok.
  - rewrite Hlc. assert (Hc2 : forall q p, q.1 <> cp -> prop_at l q = Some p \/ True -> cached_at (delete cp (cells w1)) q = cached_at (cells w) q) by (intros q p Hne _; rewrite <- Hca; apply cached_frame; now apply Hd).
    assert (Hne : forall q p, prop_at (A ++ B) q = Some p -> q.1 <> cp).
    { intros q p Hp E. apply Hcpn, cps_cell. cbn [snd]. rewrite <- E. exact (prop_at_cps _ _ _ Hp). }
    apply (cache_change (cells w) _ _ G o (c, l)); [exact (rep_cache _ _ _ _ _ Hrep) | exact Hg | | |]; cbn [snd].
    + intros q p Hp Hc. rewrite <- Hat in Hp. split; [exact Hp |]. rewrite (Hc2 q p); [exact Hc | exact (Hne q p Hp) | now right].
    + intros q p Hp Hc. pose proof (Hne q p Hp) as N. rewrite (Hc2 q p) in Hc by (exact N || now right). rewrite Hat in Hp. now split.
    + intros o' g0 q p Hne0 Hg0 Hp. apply (Hc2 q p); [| now right]. intros E. pose proof (cps_cell refs o' g0 _ (prop_at_cps _ _ _ Hp)) as Hin'. rewrite E in Hin'. destruct (rep_other _ _ _ _ _ Hrep o o' _ g0 cp Hg Hg0 Hne0 Hin') as [F1 _]. easy.
Qed.

(** ** Deletion *)

Definition maps_before (o : Z) (q : Z * bool) (status : ecma_property_hashmap_delete_status) : maps :=
  match status with
  | ECMA_PROPERTY_HASHMAP_DELETE_NO_HASHMAP => fun _ => map_is
  | ECMA_PROPERTY_HASHMAP_DELETE_HAS_HASHMAP => only_at o (map_but q)
  | ECMA_PROPERTY_HASHMAP_DELETE_RECREATE_HASHMAP => only_at o (fun _ _ => True)
  end.

Definition maps_after (o : Z) (status : ecma_property_hashmap_delete_status) : maps :=
  match status with ECMA_PROPERTY_HASHMAP_DELETE_RECREATE_HASHMAP => only_at o (fun _ _ => True) | _ => fun _ => map_is end.

Local Abbreviation rep := (rep_m refs (fun _ => map_is)).

Lemma recreate_spec w G extra o c l status : rep_m refs (maps_after o status) w G extra -> present w extra -> G !! o = Some (c, l) -> (status = ECMA_PROPERTY_HASHMAP_DELETE_RECREATE_HASHMAP -> c <> None) ->
  pruns False (recreate o status) w (fun _ w' => exists G', rep w' G' extra /\ kept w w' G G' extra).
Proof.
  intros Hrep Hpr Hg Hc. assert (Hskip : rep_m refs (fun _ => map_is) w G extra -> exists G', rep w G' extra /\ kept w w G G' extra) by (intros H; exists G; split; [exact H | apply kept_refl]).
  destruct status; cbn [recreate maps_after] in *; try exact (Hskip Hrep). destruct c as [c |]; [| now destruct (Hc eq_refl)].
  apply pruns_bind. eapply pruns_mono; [exact (hashmap_free_spec refs False _ w G extra o c l Hrep Hg) |]. intros _ w1 (Hrep1 & Hlog & Hex). cbv beta.
  assert (Hg1 : <[o := (None, l)]> G !! o = Some (None, l)) by apply lookup_insert_eq. pose proof (rep_no_map refs _ _ _ _ _ _ Hrep1 Hg1) as Hrep1'.
  assert (Hk : kept w w1 G (<[o := (None, l)]> G) extra) by (constructor; [exact (same_insert G o _ _ l Hg) | exact Hlog | exact Hex]).
  eapply pruns_mono; [exact (hashmap_create_spec refs w1 _ extra o l Hrep1' (kept_present _ _ _ _ _ Hk Hpr) Hg1) |]. intros _ w2 (G2 & Hrep2 & Hk2). exists G2. split; [exact Hrep2 | exact (kept_steps _ _ _ _ _ _ _ Hk Hk2)].
Qed.

Definition tidy (l : chain) : Prop := Forall (fun c => props_of c.2 <> []) l.

Definition deleted (w : pworld) (G : gmap Z (option Z * chain)) (extra : list Z) (o : Z) (l : chain) (q : Z * bool) (p : prop) (w' : pworld) : Prop :=
  exists G' c' l' t, rep w' G' extra /\ G' !! o = Some (c', l') /\ removes l q p l' /\ (tidy l -> tidy l') /\ snd <$> G' = <[o := l']> (snd <$> G)
    /\ log w' = log w ++ release_events t p /\ forall cp, cp ∈ extra -> cells w' !! cp = cells w !! cp.

Lemma deleted_after w w1 G G1 extra o c1 l l1 q p t status : rep_m refs (maps_after o status) w1 G1 extra -> G1 = <[o := (c1, l1)]> G -> present w extra -> removes l q p l1 -> (tidy l -> tidy l1) -> log w1 = log w ++ release_events t p ->
  (forall cp, cp ∈ extra -> cells w1 !! cp = cells w !! cp) -> (status = ECMA_PROPERTY_HASHMAP_DELETE_RECREATE_HASHMAP -> c1 <> None) ->
  pruns False (recreate o status) w1 (fun _ w' => deleted w G extra o l q p w').
Proof.
  intros Hrep -> Hpr Hr Ht Hlog Hx Hc. assert (Hpr1 : present w1 extra) by (unfold present in *; rewrite Forall_forall in *; intros cp H; rewrite Hx by exact H; now apply Hpr).
  assert (Hg1 : <[o := (c1, l1)]> G !! o = Some (c1, l1)) by apply lookup_insert_eq.
  eapply pruns_mono; [exact (recreate_spec w1 _ extra o c1 l1 status Hrep Hpr1 Hg1 Hc) |]. intros _ w2 (G2 & Hrep2 & [Hs Hl He]). destruct (same_lookup _ G2 o c1 l1 Hs Hg1) as [c2 Hg2].
  exists G2, c2, l1, t. splits; try assumption; [rewrite Hs; apply chains_insert | congruence | intros cp H; now rewrite He, Hx].
Qed.

Lemma aset_both (a : apair) b : aget (aset a b None) (negb b) = None -> aset a b None = (None, None).
Proof. destruct a, b; cbn; now intros ->. Qed.

Lemma tidy_put l q a b : tidy l -> NoDup (cps l) -> pair_in l q.1 = Some a -> aget a (negb q.2) = Some b -> tidy (put l q.1 (aset a q.2 None)).
Proof.
  intros Ht Hnd Ha Hb. destruct (pair_split l q.1 a Ha) as (A & B & -> & HA). rewrite cps_app in Hnd. cbn [cps map fst] in Hnd. apply NoDup_app in Hnd as (_ & _ & Hnd). apply NoDup_cons in Hnd as [HB _]. rewrite put_split by assumption.
  unfold tidy in *. apply Forall_app in Ht as [T1 T2]. apply Forall_cons in T2 as [_ T2]. apply Forall_app. split; [exact T1 |]. apply Forall_cons. split; [| exact T2]. destruct a as [a0 a1], q as [cp []]; cbn in *; subst; unfold props_of; cbn; [discriminate | now destruct a0].
Qed.

Lemma delete_property_spec w G extra o c l q p : rep w G extra -> present w extra -> G !! o = Some (c, l) -> prop_at l q = Some p -> (refs o = true -> is_accessor p = false) ->
  pruns False (ecma_delete_property o q) w (fun _ w' => deleted w G extra o l q p w').
Proof.
  intros Hrep Hpr Hg Hp Hrefs. destruct (rep_list _ _ _ _ _ Hrep o _ Hg) as (ob & Ho & [Hl _]). cbn [fst snd] in Hl. destruct (rep_nodup _ _ _ _ _ Hrep o _ Hg) as [Hnd [Hok _]]. pose proof (cps_nodup refs o _ Hnd) as Hcps. cbn [snd] in Hcps, Hok.
  pose proof (has_map_run refs _ w G extra o _ ob Hrep Hg Ho) as Hhas. cbn [fst] in Hhas. destruct (contents_room refs _ w G extra o _ Hrep Hg) as [_ Hlen]. cbn [snd] in Hlen.
  assert (Ha : exists a, pair_in l q.1 = Some a /\ aget a q.2 = Some p) by (unfold prop_at in Hp; destruct (pair_in l q.1) as [a |]; [now exists a | discriminate]). destruct Ha as (a & Ha & Hap).
  destruct (pair_split l q.1 a Ha) as (A & B & El & HA).
  unfold ecma_delete_property. eapply pruns_done; [unfold get_list; rewrite Ho; reflexivity |]. eapply pruns_done; [exact Hhas |].
  assert (Hstart : exists first, (if match c with Some _ => true | None => false end then h ← get_hashmap (property_list_cp ob); mret (Some (property_list_cp ob), next_of_map h) else mret (None, property_list_cp ob)) w = PDONE _ (c, first) w /\ linked (cells w) first l).
  { destruct c as [hc |]; [| exists (property_list_cp ob); now split]. destruct Hl as (Ehead & Hc0 & h & Hh & Hl & Hm). exists (next_of_map h). split; [unfold mbind, P_bind, get_hashmap; rewrite Ehead, Hh; reflexivity | exact Hl]. }
  destruct Hstart as (first & Estart & Hlinked). eapply pruns_done; [exact Estart |]. cbn [fst snd]. eapply pruns_done; [reflexivity |].
  rewrite El in Hlinked, Hlen. rewrite length_app in Hlen. eapply pruns_done; [exact (find_previous_run w A q.1 a B (S (size (cells w))) first c Hlinked HA ltac:(lia)) |]. rewrite <- El in Hlinked. cbv iota.
  destruct (list_memory refs _ w G extra Hrep o _ q p Hg Hp) as [(x & Hx & Hs) Hokp]. eapply pruns_done; [unfold get_property, mbind, P_bind, get_pair; rewrite Hx; reflexivity |]. destruct Hs as (Hname & _). rewrite Hname.
  (* the hash map *)
  assert (Hmap : exists status w1, (if match c with Some _ => true | None => false end then ecma_property_hashmap_delete o (name_value (p_name p)) q else mret ECMA_PROPERTY_HASHMAP_DELETE_NO_HASHMAP) w = PDONE _ status w1
    /\ rep_m refs (maps_before o q status) w1 G extra /\ kept w w1 G G extra /\ (status <> ECMA_PROPERTY_HASHMAP_DELETE_NO_HASHMAP <-> c <> None)).
  { destruct c as [hc |].
    - destruct (hashmap_delete_run refs w G extra o hc l q p Hrep Hg Hp) as (status & w1 & E & Hk & _ & _ & _ & Hst). exists status, w1. split; [exact E |]. split; [destruct status; [easy | exact Hst | exact Hst] |]. split; [exact Hk |]. destruct status; easy.
    - exists ECMA_PROPERTY_HASHMAP_DELETE_NO_HASHMAP, w. split; [reflexivity |]. split; [exact Hrep |]. split; [apply kept_refl | easy]. }
  destruct Hmap as (status & w1 & E1 & Hrep1 & Hk1 & Hc1). eapply pruns_done; [exact E1 |].
  (* the property *)
  destruct (gc_free_property_run _ w1 G extra o c l q p Hrep1 Hg Hp Hrefs) as (w2 & w3 & t & Hrep2 & Hk2 & Hcq & _ & E3 & Hlog3 & Ho3 & Hlc3 & Hheap3 & Hcells3). eapply pruns_done; [exact E3 |].
  destruct (list_memory refs _ w2 G extra Hrep2 o _ q p Hg Hp) as [(x2 & Hx2 & _) _]. set (l2 := put l q.1 (aset a q.2 None)).
  set (s := mk_slot ECMA_PROPERTY_TYPE_DELETED LIT_INTERNAL_MAGIC_STRING_DELETED (values (get_slot x2 q.2))).
  pose proof (removes_put l q p a Hcps Hp Ha) as Hrem. fold l2 in Hrem.
  destruct (rep_remove (maps_before o q status) (maps_after o status) w2 w3 G extra o c l q p a x2 s Hrep2 Hg Hp Ha Hcq Ho3 Hlc3 Hheap3 Hcells3 Hx2) as (Hrep4 & Hx3 & Hex3).
  { now split. }
  { intros o' Hne. destruct status; cbn [maps_before maps_after]; [reflexivity | now rewrite only_at_other | reflexivity]. }
  { intros hc h -> H. destruct status; cbn [maps_before maps_after] in *; [destruct (proj2 Hc1) as []; easy | | rewrite only_at_here in *; exact I]. rewrite only_at_here in H. exact (map_but_removed q h l l2 p H Hp Hrem). }
  fold l2 in Hrep4. eapply pruns_done; [unfold get_property, mbind, P_bind, get_pair; rewrite Hx3; reflexivity |]. fold s.
  eapply pruns_done; [unfold put_property, mbind, P_bind, get_pair; rewrite Hx3; unfold put_pair; rewrite Hx3; reflexivity |]. set (w4 := set_cells _ w3) in *. set (x4 := set_slot x2 q.2 s).
  eapply pruns_done; [unfold get_pair; cbn [w4 cells set_cells]; rewrite lookup_insert_eq; reflexivity |]. fold x4.
  assert (Hlog4 : log w4 = log w ++ release_events t p) by (cbn [w4 log set_cells]; rewrite Hlog3, (kept_log _ _ _ _ _ Hk2), (kept_log _ _ _ _ _ Hk1); reflexivity).
  assert (Hex4 : forall cp, cp ∈ extra -> cells w4 !! cp = cells w !! cp).
  { intros cp Hcp. cbn [w4 cells set_cells]. rewrite lookup_insert_ne; [rewrite Hex3, (kept_extra _ _ _ _ _ Hk2), (kept_extra _ _ _ _ _ Hk1) by exact Hcp; reflexivity |].
    intros E. apply (rep_extra _ _ _ _ _ Hrep o _ q.1 Hg); [apply cps_cell; exact (prop_at_cps _ _ _ Hp) | now rewrite E]. }
  assert (Hrec : status = ECMA_PROPERTY_HASHMAP_DELETE_RECREATE_HASHMAP -> c <> None) by (intros ->; apply Hc1; discriminate).
  set (a2 := aset a q.2 None) in *.
  assert (Hg4 : <[o := (c, l2)]> G !! o = Some (c, l2)) by apply lookup_insert_eq.
  destruct (list_linked refs _ w4 _ extra o _ Hrep4 Hg4) as [head4 Hlk4]. cbn [snd] in Hlk4.
  assert (Ha2 : pair_in l2 q.1 = Some a2) by (unfold l2; now rewrite pair_in_put, Z.eqb_refl, Ha).
  destruct (linked_pair _ _ _ _ _ Hlk4 Ha2) as (x4' & Hx4' & Hpair). assert (x4' = x4) as -> by (cbn [w4 cells set_cells] in Hx4'; rewrite lookup_insert_eq in Hx4'; now injection Hx4').
  assert (Hother : slot_is (get_slot x4 (negb q.2)) (aget a2 (negb q.2))) by (destruct Hpair; now destruct q.2).
  destruct (rep_nodup _ _ _ _ _ Hrep4 o _ Hg4) as [Hnd4 [Hok4 _]]. cbn [snd] in Hok4. pose proof (cps_nodup refs o _ Hnd4) as Hcps4. cbn [snd] in Hcps4.
  destruct (aget a2 (negb q.2)) as [b |] eqn:Eb.
  - assert (Hokb : prop_ok b) by (rewrite Forall_forall in Hok4; apply Hok4, list_elem_of_In; apply (prop_in l2 (q.1, negb q.2)); unfold prop_at; cbn [fst snd]; now rewrite Ha2).
    rewrite (slot_named _ b Hokb Hother). cbn [negb]. apply (deleted_after w w4 G _ extra o c l l2 q p t status Hrep4 eq_refl Hpr Hrem); [| exact Hlog4 | exact Hex4 | exact Hrec].
    intros Ht. apply (tidy_put l q a b Ht Hcps Ha). rewrite <- Eb. unfold a2. now destruct a, q as [? []].
  - destruct Hother as [Et _]. rewrite Et, Z.eqb_refl. cbn [negb].
    pose proof (aset_both a q.2 Eb) as Ea2. fold a2 in Ea2.
    assert (HB : ~ q.1 ∈ cps B) by (rewrite El, cps_app in Hcps; cbn [cps map fst] in Hcps; apply NoDup_app in Hcps as (_ & _ & H); now apply NoDup_cons in H as [H _]).
    assert (El2 : l2 = A ++ (q.1, (None, None)) :: B) by (unfold l2; rewrite El, put_split by assumption; now rewrite Ea2). clearbody l2. subst l2.
    destruct (drop_pair A B q.1 Hcps4) as [Econt Hat].
    destruct (rep_unlink (maps_after o status) w4 _ extra o c A q.1 B Hrep4 Hg4) as (next & w5 & E5 & Hrep5 & Hlog5 & Hex5 & px & Hpx & Enext).
    { intros h next H. destruct status; cbn [maps_after] in *; [| | rewrite only_at_here; exact I]; (eapply map_is_next; [exact H | exact Hat]). }
    assert (px = x4) as -> by (cbn [w4 cells set_cells] in Hpx; rewrite lookup_insert_eq in Hpx; now injection Hpx). rewrite <- Enext.
    rewrite insert_insert_eq in Hrep5.
    assert (Erun : (unlink_pair o (previous c A) next;; jmem_heap_free_block q.1 sizeof_ecma_property_pair_t;; recreate o status) w4 = recreate o status w5).
    { unfold mbind, P_bind in *. destruct (unlink_pair o (previous c A) next w4) as [[] w' | |]; try discriminate. now rewrite E5. }
    unfold pruns. rewrite Erun. apply (deleted_after w w5 G _ extra o c l (A ++ B) q p t status Hrep5 eq_refl Hpr).
    + destruct Hrem as [(X & Y & EX & EY) Hrat]. constructor; [exists X, Y; split; [exact EX | now rewrite <- Econt] |]. intros q'. rewrite Hat. apply Hrat.
    + intros Ht. rewrite El in Ht. unfold tidy in *. apply Forall_app in Ht as [T1 T2]. apply Forall_cons in T2 as [_ T2]. now apply Forall_app.
    + now rewrite Hlog5.
    + intros cp Hcp. rewrite Hex5 by exact Hcp. now apply Hex4.
    + exact Hrec.
Qed.
End Rep.
End Delete.
