(* ===== verification/PropUpdate.v ===== *)
(** * Changes of properties

    Stores of a value and the attribute setters of ecma-helpers.c change one property in
    its place: its name, the cache and the hash maps stay as they are. *)
From Stdlib Require Import ZArith Lia Bool List.
From stdpp Require Import base gmap list.
From S2P Require Import Prelude JmemPointers Values Jmem PropNames PropHashmap PropProbing Properties PropState PropMemory PropCache PropMap PropCreate PropDelete.
Import ListNotations.
#[local] Open Scope Z_scope.

(** ** Code *)

Section Code.
Context {PN : PropertyNames} {PH : PropertyHeap}.

(** The attribute setters change the byte of a property in its place *)
Definition set_attribute (setter : Z -> bool -> Z) (property_p : Z * bool) (value : bool) : P unit :=
  s ← get_property property_p;
  put_property property_p (set_types s (setter (types s) value)).

(** What is stored at the value of a property *)
Definition store_value (property_p : Z * bool) (value : Z) : P unit :=
  s ← get_property property_p;
  put_property property_p (mk_slot (types s) (names_cp s) value).
End Code.

(** ** Attributes *)

(** The three flags that are attributes *)
Definition is_attribute (flag : Z) : bool := (flag =? ECMA_PROPERTY_FLAG_CONFIGURABLE) || (flag =? ECMA_PROPERTY_FLAG_ENUMERABLE) || (flag =? ECMA_PROPERTY_FLAG_WRITABLE).

(** Flags with an attribute set or cleared *)
Definition attribute_put (flags flag : Z) (value : bool) : Z := flags - flag * (flags / flag mod 2) + if value then flag else 0.

Lemma with_flag_put t flag value : 0 <= t < 256 -> is_attribute flag = true -> with_flag t flag value = attribute_put t flag value.
Proof.
  intros Ht Hf. assert (H : forallb (fun k => let t := Z.of_nat k in forallb (fun flag => (with_flag t flag true =? attribute_put t flag true) && (with_flag t flag false =? attribute_put t flag false)) [1; 2; 4]) (seq 0 256) = true) by (vm_compute; reflexivity).
  rewrite forallb_forall in H. specialize (H (Z.to_nat t) ltac:(apply in_seq; lia)). cbv zeta in H. rewrite Z2Nat.id in H by lia. rewrite forallb_forall in H.
  assert (Hin : In flag [1; 2; 4]).
  { unfold is_attribute in Hf. rewrite !orb_true_iff, !Z.eqb_eq in Hf. destruct Hf as [[-> | ->] | ->]; cbn; auto. }
  specialize (H flag Hin). apply andb_prop in H as [H1 H2]. apply Z.eqb_eq in H1, H2. now destruct value.
Qed.

(** The other bits of a property stay *)
Lemma attribute_bits flags flag value : is_attribute flag = true -> 0 <= flags -> 
  0 <= attribute_put flags flag value /\ attribute_put flags flag value mod 8 = attribute_put (flags mod 8) flag value /\ attribute_put flags flag value / 8 = flags / 8.
Proof.
  intros Hf H0. assert (Hin : flag = 1 \/ flag = 2 \/ flag = 4) by (unfold is_attribute in Hf; rewrite !orb_true_iff, !Z.eqb_eq in Hf; tauto).
  unfold attribute_put. destruct Hin as [-> | [-> | ->]], value; splits; Z.div_mod_to_equations; lia.
Qed.

Lemma attribute_put_add flags k flag value : is_attribute flag = true -> attribute_put (flags + 8 * k) flag value = attribute_put flags flag value + 8 * k.
Proof.
  intros Hf. assert (Hin : flag = 1 \/ flag = 2 \/ flag = 4) by (unfold is_attribute in Hf; rewrite !orb_true_iff, !Z.eqb_eq in Hf; tauto).
  unfold attribute_put. destruct Hin as [-> | [-> | ->]], value; Z.div_mod_to_equations; lia.
Qed.

Section Update.
Context {PN : PropertyNames} {PH : PropertyHeap}.

(** ** Lists with another property in its place *)

(** [l'] is [l] with [p'] where [p] was *)
Record replaces (l : chain) (q : Z * bool) (p p' : prop) (l' : chain) : Prop := mk_replaces {
  replaces_contents : exists A B, contents l = A ++ p :: B /\ contents l' = A ++ p' :: B;
  replaces_cps : cps l' = cps l;
  replaces_at : forall q', prop_at l' q' = if bool_decide (q' = q) then Some p' else prop_at l q'
}.

Lemma replaces_put l q p p' a : NoDup (cps l) -> prop_at l q = Some p -> pair_in l q.1 = Some a -> replaces l q p p' (put l q.1 (aset a q.2 (Some p'))).
Proof.
  intros Hnd Hp Ha. constructor; [| apply put_cps |].
  - destruct (pair_split l q.1 a Ha) as (A & B & -> & HA). rewrite cps_app in Hnd. cbn [cps map fst] in Hnd. apply NoDup_app in Hnd as (_ & _ & Hnd). apply NoDup_cons in Hnd as [HB _].
    rewrite put_split by assumption. rewrite !contents_app, !contents_cons. unfold prop_at in Hp. rewrite Ha in Hp. destruct a as [a0 a1], q as [cp []]; cbn [aget aset fst snd] in *; subst.
    + exists (contents A ++ option_list a0), (contents B). unfold props_of. cbn [fst snd option_list]. split; now rewrite <- !app_assoc.
    + exists (contents A), (option_list a1 ++ contents B). unfold props_of. cbn [fst snd option_list]. split; reflexivity.
  - intros q'. unfold prop_at. rewrite pair_in_put. destruct (Z.eqb_spec q'.1 q.1) as [E | Hne]; [| rewrite bool_decide_false; [reflexivity | now intros ->]].
    rewrite Ha, E, Ha. destruct q as [cp b], q' as [cp' b'], a as [a0 a1]. cbn [fst snd] in *. subst cp'. destruct b, b'; cbn [aset aget fst snd]; case_bool_decide as E'; try reflexivity; congruence.
Qed.

(** The change keeps the name and, of an accessor, its cell *)
Record alike (p p' : prop) : Prop := mk_alike {
  alike_ok : prop_ok p';
  alike_name : p_name p' = p_name p;
  alike_kind : is_accessor p' = is_accessor p;
  alike_cell : is_accessor p = true -> p_value p' = p_value p
}.

Lemma replaces_accs references l q p p' l' : replaces l q p p' l' -> alike p p' -> accs references l' = accs references l.
Proof.
  intros [(A & B & E & E') _ _] [_ _ Hk Hc]. unfold accs. destruct references; [reflexivity |]. rewrite E, E', !List.filter_app, !map_app. f_equal. cbn [List.filter]. rewrite Hk.
  destruct (is_accessor p); [| reflexivity]. cbn [map]. now rewrite Hc.
Qed.

Lemma replaces_ok l q p p' l' : replaces l q p p' l' -> alike p p' -> chain_ok l -> chain_ok l'.
Proof.
  intros [(A & B & E & E') _ _] [Hok Hn _ _] [H1 H2]. unfold chain_ok. rewrite E, E' in *. split.
  - apply Forall_app in H1 as [HA HB]. apply Forall_cons in HB as [_ HB]. apply Forall_app. split; [exact HA | now constructor].
  - rewrite map_app in *. cbn [map] in *. now replace (key p') with (key p) by (unfold key; now rewrite Hn).
Qed.

Lemma replaces_map h l q p p' l' : replaces l q p p' l' -> alike p p' -> prop_at l q = Some p -> map_is h l -> map_is h l'.
Proof.
  intros [_ _ Hat] Ha Hp (n & Htable & Hunused). exists n. split; [| exact Hunused]. apply (table_ok_ext n h (in_use l) (in_use l') (slot_hash l) (slot_hash l')); [exact Htable | |].
  - intros x. unfold in_use. rewrite Hat. case_bool_decide as E; [subst x; split; intros _; eauto | tauto].
  - intros x _. unfold slot_hash. rewrite Hat. case_bool_decide as E; [subst x; rewrite Hp; unfold prop_hash; now rewrite (alike_name _ _ Ha) | reflexivity].
Qed.

(** ** In memory *)

Context (refs : Z -> bool).
Local Abbreviation rep := (rep_m refs (fun _ => map_is)).

(** One slot of a pair gets another content *)
Lemma rep_update w G extra o c l q p p' x s' : rep w G extra -> G !! o = Some (c, l) -> prop_at l q = Some p -> alike p p' ->
  cells w !! q.1 = Some (PAIR x) -> slot_is s' (Some p') -> ecma_is_property_lcached (types s') = ecma_is_property_lcached (types (get_slot x q.2)) ->
  exists l', replaces l q p p' l' /\ rep (set_cells (<[q.1 := PAIR (set_slot x q.2 s')]> (cells w)) w) (<[o := (c, l')]> G) extra.
Proof.
  intros Hrep Hg Hp Halike Hx Hs' Hmark. destruct (rep_list _ _ _ _ _ Hrep o _ Hg) as (ob & Ho & [Hl Haccs]). destruct (rep_nodup _ _ _ _ _ Hrep o _ Hg) as [Hnd Hok]. cbn [fst snd] in *.
  pose proof (cps_nodup refs o _ Hnd) as Hcps. cbn [snd] in Hcps. pose proof (prop_at_cps _ _ _ Hp) as Hcp. assert (Hin : q.1 ∈ cells_of refs o (c, l)) by now apply cps_cell.
  assert (Ha : exists a, pair_in l q.1 = Some a) by (unfold prop_at in Hp; destruct (pair_in l q.1) as [a |]; [now exists a | discriminate]). destruct Ha as [a Ha].
  set (l' := put l q.1 (aset a q.2 (Some p'))). pose proof (replaces_put l q p p' a Hcps Hp Ha : replaces l q p p' l') as Hr. exists l'. split; [exact Hr |].
  set (x' := set_slot x q.2 s'). set (m' := <[q.1 := PAIR x']> (cells w)).
  assert (Hother : forall cp, cp <> q.1 -> m' !! cp = cells w !! cp) by (intros cp Hne; now apply lookup_insert_ne).
  assert (Hcells : cells_of refs o (c, l') = cells_of refs o (c, l)) by (unfold cells_of; cbn [fst snd]; now rewrite (replaces_cps _ _ _ _ _ Hr), (replaces_accs _ _ _ _ _ _ Hr Halike)).
  assert (Hlinked : forall head, linked (cells w) head l -> linked m' head l').
  { intros head H. destruct (linked_pair _ _ _ _ _ H Ha) as (x0 & Hx0 & H0 & H1). rewrite Hx in Hx0. injection Hx0 as <-. apply (linked_put _ _ x); [exact H | exact Hcps | exact Hx | now destruct q as [? []] |].
    unfold x'. destruct q as [cp []], a as [a0 a1]; cbn [aset fst snd] in *; now split. }
  apply (list_change refs (fun _ => map_is) (fun _ => map_is) w _ G o (c, l) (c, l') extra extra ob); cbn [heap cells objects lcache set_cells fst snd]; try assumption; rewrite ?Hcells; fold m'.
  - unfold m'. rewrite fmap_insert. rewrite insert_id; [exact (rep_heap _ _ _ _ _ Hrep) | now rewrite lookup_fmap, Hx].
  - split; cbn [fst snd].
    + destruct c as [c |]; [| now apply Hlinked]. destruct Hl as (-> & Hc & h & Hh & Hl & Hm). splits; [reflexivity | exact Hc |]. exists h.
      splits; [rewrite Hother; [exact Hh |] | now apply Hlinked | exact (replaces_map h l q p p' l' Hr Halike Hp Hm)]. intros ->. congruence.
    + rewrite (replaces_accs _ _ _ _ _ _ Hr Halike). unfold accs_in in *. rewrite Forall_forall in *. intros b Hb. rewrite Hother; [now apply Haccs |]. intros ->. destruct (Haccs _ Hb) as (y & z & E). congruence.
  - intros o' _. split; reflexivity.
  - intros cp H _. apply Hother. now intros ->.
  - intros cp y H. split; [| tauto]. unfold m' in H. apply lookup_insert_Some in H as [[<- _] | [_ H]]; eauto.
  - tauto.
  - intros cp H. exact (rep_extra _ _ _ _ _ Hrep o _ cp Hg H).
  - exact Hnd.
  - exact (replaces_ok _ _ _ _ _ Hr Halike Hok).
  - assert (Hca : forall q', cached_at m' q' = cached_at (cells w) q').
    { intros q'. destruct (decide (q'.1 = q.1)) as [E | Hne]; [| now apply cached_frame, Hother]. unfold cached_at, m'. rewrite E, lookup_insert_eq, Hx. unfold x'. rewrite get_set_slot.
      destruct (Bool.eqb q.2 q'.2) eqn:Eb; [| reflexivity]. apply Bool.eqb_prop in Eb. now rewrite <- Eb. }
    destruct (rep_cache _ _ _ _ _ Hrep) as [H1 H2 Hsound Hcomplete Honce].
    assert (Hid : forall p1, p_name p1 = p_name p -> cache_id o p1 = cache_id o p /\ cache_row o p1 = cache_row o p) by (intros p1 E; unfold cache_id, cache_row; now rewrite E).
    destruct (Hid p' (alike_name _ _ Halike)) as [Eid Erow].
    constructor; [exact H1 | exact H2 | | | exact Honce].
    + intros r row e Hrow He Hu. destruct (Hsound r row e Hrow He Hu) as (o' & g0 & p0 & Hg0 & Hp0 & Hi & Hro & Hc0). rewrite <- Hca in Hc0. destruct (decide (o' = o)) as [-> | Hne].
      * rewrite Hg in Hg0. injection Hg0 as <-. cbn [snd] in Hp0. destruct (decide (prop_p e = q)) as [Eq | Nq].
        -- rewrite Eq in *. rewrite Hp in Hp0. injection Hp0 as <-. exists o, (c, l'), p'. rewrite lookup_insert_eq, Eid, Erow. splits; try assumption; [reflexivity |]. cbn [snd]. rewrite (replaces_at _ _ _ _ _ Hr). now rewrite bool_decide_true.
        -- exists o, (c, l'), p0. rewrite lookup_insert_eq. splits; try assumption; [reflexivity |]. cbn [snd]. rewrite (replaces_at _ _ _ _ _ Hr). now rewrite bool_decide_false.
      * exists o', g0, p0. rewrite lookup_insert_ne by congruence. now splits.
    + intros o' g0 q0 p0 Hg0 Hp0 Hc0. rewrite Hca in Hc0. destruct (decide (o' = o)) as [-> | Hne].
      * rewrite lookup_insert_eq in Hg0. injection Hg0 as <-. cbn [snd] in Hp0. rewrite (replaces_at _ _ _ _ _ Hr) in Hp0. case_bool_decide as E.
        -- subst q0. injection Hp0 as <-. rewrite Erow. exact (Hcomplete o (c, l) q p Hg Hp Hc0).
        -- exact (Hcomplete o (c, l) q0 p0 Hg Hp0 Hc0).
      * rewrite lookup_insert_ne in Hg0 by congruence. exact (Hcomplete o' g0 q0 p0 Hg0 Hp0 Hc0).
Qed.
End Update.
