(* ===== verification/PropHeap.v ===== *)
(** * Property lists in the memory of the engine

    The instances of what property lists need.  The memory manager of Jmem.v is a heap
    for the property lists of Properties.v: its blocks by their compressed pointers,
    when nothing waits for a collection.  And the strings of the engine are names. *)
From Stdlib Require Import ZArith Lia Bool List.
From stdpp Require Import base gmap list.
From S2P Require Import Prelude LitChars LitStrings JmemHeap JmemPointers Values Jmem JmemSpec BlockHeap MagicStrings StringData Decimal StringRepr StringAccess.
From S2P Require Import PropNames PropHashmap Properties.
Import ListNotations.
#[local] Open Scope Z_scope.

(** The address of a compressed pointer *)
Definition address (cp : Z) : Z := 8 * (cp - 1).

#[export] Instance address_inj : Inj (=) (=) address.
Proof. intros a b. unfold address. lia. Qed.

(** Blocks of one size that are apart fill their place *)
Lemma apart_room n N (l : list Z) : 0 < n -> 0 <= N -> NoDup l -> Forall (fun x => 0 <= x /\ x + n <= N) l ->
  (forall x y, x ∈ l -> y ∈ l -> x <> y -> x + n <= y \/ y + n <= x) -> n * zlength l <= N.
Proof.
  intros Hn HN Hnd Hin Hapart. rewrite Forall_forall in Hin. set (f := fun x => seqZ x n).
  assert (Hf : NoDup (l ≫= f)).
  { apply NoDup_bind; [| intros x _; apply NoDup_seqZ | exact Hnd]. intros x y z Hx Hy Hzx Hzy. apply elem_of_seqZ in Hzx, Hzy. destruct (Z.eq_dec x y) as [E | Hne]; [exact E |]. destruct (Hapart x y Hx Hy Hne); lia. }
  assert (Hsub : l ≫= f ⊆+ seqZ 0 N).
  { apply NoDup_submseteq; [exact Hf |]. intros z Hz. apply list_elem_of_bind in Hz as (x & Hz & Hx). apply elem_of_seqZ in Hz. apply elem_of_seqZ. specialize (Hin x Hx). lia. }
  apply submseteq_length in Hsub. rewrite length_seqZ in Hsub.
  assert (Hlen : Z.of_nat (length (l ≫= f)) = n * zlength l).
  { clear - Hn. induction l as [| x l IH]; [rewrite (@zlength_nil Z), Z.mul_0_r; reflexivity |]. change ((x :: l) ≫= f) with (f x ++ (l ≫= f)). rewrite length_app, zlength_cons, Nat2Z.inj_add, IH. unfold f. rewrite length_seqZ. lia. }
  lia.
Qed.

Definition addresses (live : gmap Z Z) : gmap Z Z := kmap address live.

Section Instance.
Context (cfg : jmem_config) (Hcfg : jmem_config_ok cfg).

Definition jmem_holding (j : jmem_context) (live : gmap Z Z) : Prop :=
  (exists ts pages fc, mem_rep cfg None j ts pages fc (addresses live)) /\ engine j = mk_engine [] [].

Definition as_cp (r : outcome (option Z)) : option (Z * jmem_context) :=
  match r with DONE (Some p) j => Some (jmem_compress_pointer 32 p, j) | _ => None end.

Lemma live_cp j ts pages fc live p s : mem_rep cfg None j ts pages fc (<[p := s]> (addresses live)) -> addresses live !! p = None -> engine j = mk_engine [] [] ->
  let cp := jmem_compress_pointer 32 p in jmem_holding j (<[cp := s]> live) /\ live !! cp = None /\ 0 < cp < 536870912.
Proof.
  intros H Hnew He. assert (Hl : <[p := s]> (addresses live) !! p = Some s) by apply lookup_insert_eq. destruct (live_in_area cfg H p s Hl) as (H1 & H2 & H3). destruct (live_aligned cfg j ts pages fc _ p s H Hl) as [q Eq].
  pose proof (heap_size_range _ (heap_config_ok _ Hcfg)) as Hr. unfold JMEM_HEAP_AREA_SIZE, JMEM_ALIGNMENT in *. replace p with (8 * q) in * by lia.
  assert (Ecp : jmem_compress_pointer 32 (8 * q) = q + 1) by (apply compress_block; [now right | lia | cbn; lia]). cbn zeta. rewrite Ecp.
  assert (Ea : address (q + 1) = 8 * q) by (unfold address; lia). rewrite <- Ea in *. splits; [split; [exists ts, pages, fc | exact He] | | lia | lia].
  - unfold addresses. rewrite (kmap_insert address). exact H.
  - unfold addresses in Hnew. rewrite (lookup_kmap address) in Hnew. exact Hnew.
Qed.

Lemma no_garbage j live e' live' : engine j = mk_engine [] [] -> collected (engine j) live e' live' -> live' = live /\ e' = mk_engine [] [].
Proof.
  intros -> (-> & Hu & Hh). cbn in Hu, Hh. destruct e' as [u h]. cbn [unreachable hashmaps] in *. destruct Hu as [-> | ->], Hh as [-> | ->]; split; reflexivity.
Qed.

Definition jmem_lists : PropertyHeap.
Proof.
  refine {|
    prop_heap := jmem_context;
    holding := jmem_holding;
    over_limit size j := jmem_heap_limit j <=? u64 (jmem_heap_allocated_size j + size);
    alloc_cell j := as_cp (jmem_cellocator_alloc j);
    alloc_region n j := if n <? B32 then as_cp (JmemHeap.alloc_region cfg (jmem_align n) j) else None;
    alloc_page j := match add_page cfg (fun _ => false) (heap_alloc cfg (fun _ => false) 1) j with DONE true j => Some j | _ => None end;
    cell_page_size := JMEM_CELLOCATOR_PAGE_SIZE (vm_cell_count cfg);
    heap_free cp n j := match Jmem.jmem_heap_free_block cfg (jmem_decompress_pointer cp) n j with DONE _ j => Some j | _ => None end;
    gc_run j := match ecma_gc_run cfg j with DONE _ j => j | _ => j end;
    low_pressure_runs _ := false
  |}.
  - intros j live n p j' [(ts & pages & fc & H) He] Hn. unfold JMEM_CELLOCATOR_CELL_SIZE in Hn. destruct fc as [| c fc]; [now rewrite (cell_alloc_none cfg None j ts pages _ H) |].
    assert (Hal : 0 < n <= jmem_align n /\ jmem_align n <= JMEM_CELLOCATOR_CELL_SIZE) by (unfold jmem_align, JMEM_ALIGNMENT, JMEM_CELLOCATOR_CELL_SIZE, u64; rewrite Z.mod_small by lia; Z.div_mod_to_equations; lia).
    destruct (cell_alloc_some cfg None j ts pages c fc _ n H (proj1 Hal) (proj2 Hal)) as (j1 & -> & H1 & Hnew & _ & He1). cbn [as_cp]. intros [= <- <-].
    apply (live_cp j1 ts pages fc live c n H1 Hnew). congruence.
  - intros j live n p j' [(ts & pages & fc & H) He] Hn. destruct (Z.ltb_spec n B32) as [Hlt |]; [| discriminate]. unfold JMEM_CELLOCATOR_CELL_SIZE in Hn.
    assert (Hal : 0 < n <= jmem_align n /\ JMEM_CELLOCATOR_CELL_SIZE < jmem_align n) by (unfold jmem_align, JMEM_ALIGNMENT, JMEM_CELLOCATOR_CELL_SIZE, u64; rewrite Z.mod_small by lia; Z.div_mod_to_equations; lia).
    destruct (region_alloc_spec cfg None Hcfg j ts pages fc _ n H (proj1 Hal) (proj2 Hal)) as (res & j1 & -> & (live1 & Hg & Hres) & Hr). destruct res as [c |]; cbn [as_cp]; [| discriminate]. intros [= <- <-].
    destruct Hr as (ts' & H1 & He1). destruct Hg as [(-> & _ & _) _]. destruct Hres as (Hnew & _). rewrite He1, He in Hnew. cbn in Hnew. apply (live_cp j1 ts' pages fc live c n H1 Hnew). congruence.
  - intros j live j' [(ts & pages & fc & H) He]. pose proof (page_size_large cfg Hcfg) as Hbig. pose proof (page_size_range _ Hcfg) as Hrange. pose proof (page_size_aligned cfg) as Hd.
    assert (Hal : jmem_align (page_size cfg) = page_size cfg) by (apply align_multiple; [unfold JMEM_CELLOCATOR_CELL_SIZE in Hbig; lia | exact Hd]).
    assert (Hok : alloc_ok cfg None (heap_alloc cfg (fun _ => false) 1 (page_size cfg)) (page_size cfg)) by (apply heap_alloc_region; [exact Hcfg | rewrite Hal; unfold JMEM_CELLOCATOR_CELL_SIZE in Hbig; lia | now rewrite Hal]).
    destruct (add_page_spec cfg None Hcfg (fun _ => false) (heap_alloc cfg (fun _ => false) 1) j ts pages fc _ Hok H) as (res & j1 & -> & live1 & [Hc _] & Hres). destruct res; [| discriminate]. intros [= <-].
    destruct Hres as (ts1 & pages1 & c & fc1 & H1). destruct (no_garbage _ _ _ _ He Hc) as [-> He1]. split; [now exists ts1, pages1, (c :: fc1) | exact He1].
  - intros j live p n [(ts & pages & fc & H) He] Hp. assert (Hl : addresses live !! address p = Some n) by (unfold addresses; rewrite (lookup_kmap address); exact Hp).
    destruct (live_in_area cfg H _ n Hl) as (H1 & H2 & H3). assert (Ea : jmem_decompress_pointer p = address p) by (unfold address in *; replace p with ((p - 1) + 1) at 1 by lia; apply decompress_block; pose proof (heap_size_range _ (heap_config_ok _ Hcfg)); unfold JMEM_HEAP_AREA_SIZE, JMEM_ALIGNMENT in *; lia).
    rewrite Ea. destruct (free_block_spec cfg None Hcfg j ts pages fc _ _ n n H Hl eq_refl ltac:(rewrite He; apply not_elem_of_nil) ltac:(discriminate)) as (j1 & ts1 & fc1 & -> & Hr & _ & He1).
    exists j1. split; [reflexivity |]. split; [| congruence]. exists ts1, pages, fc1. unfold addresses in *. now rewrite (kmap_delete address).
  - intros j live [(ts & pages & fc & H) He]. destruct (gc_run_spec cfg None Hcfg (fun _ => false) j ts pages fc _ H) as (j1 & ts1 & fc1 & live1 & -> & Hr & [Hc _] & _). destruct (no_garbage _ _ _ _ He Hc) as [-> He1]. split; [now exists ts1, pages, fc1 | exact He1].
  - intros j live n blocks [(ts & pages & fc & H) _] Hn Hnd Hin. rewrite Forall_forall in Hin.
    assert (Hl : forall p, p ∈ blocks -> addresses live !! address p = Some n) by (intros p Hp; unfold addresses; rewrite (lookup_kmap address); exact (Hin p Hp)).
    pose proof (heap_size_range _ (heap_config_ok _ Hcfg)) as Hr. unfold JMEM_HEAP_AREA_SIZE, JMEM_ALIGNMENT in Hr.
    transitivity (JMEM_HEAP_AREA_SIZE cfg); [| unfold JMEM_HEAP_AREA_SIZE, JMEM_ALIGNMENT; lia]. replace (zlength blocks) with (zlength (map address blocks)) by (unfold zlength; now rewrite length_map).
    apply apart_room; [exact Hn | unfold JMEM_HEAP_AREA_SIZE, JMEM_ALIGNMENT; lia | apply (NoDup_fmap_2 address); exact Hnd | |].
    + apply Forall_forall. intros a Ha. apply (list_elem_of_fmap address) in Ha as (p & -> & Hp). destruct (live_in_area cfg H _ n (Hl p Hp)); lia.
    + intros a b Ha Hb Hne. apply (list_elem_of_fmap address) in Ha as (p & -> & Hp). apply (list_elem_of_fmap address) in Hb as (q & -> & Hq).
      pose proof (live_disjoint cfg H _ n _ n (Hl p Hp) (Hl q Hq) Hne) as Hd. destruct (align_extent n) as [He _]. destruct (rep_live _ _ _ _ _ _ H _ n (Hl p Hp)) as (Hs & _). lia.
Defined.

(** The memory after jmem_heap_init holds no blocks *)
Lemma holding_start : holding (PropertyHeap := jmem_lists) (jmem_heap_init cfg) ∅.
Proof. split; [| reflexivity]. exists [FREE (JMEM_HEAP_AREA_SIZE cfg)], [], []. unfold addresses. rewrite (kmap_empty address). exact (init_rep cfg Hcfg). Qed.
End Instance.

(** ** Strings as names of properties

    The strings of the engine are names for the property lists of Properties.v: a name
    stands for its characters, its hash and the comparison are those of
    ecma-helpers-string.c.  The strings are in a memory [m]; [names] are those that are
    used as names. *)

Lemma hash_combine_u32 s : forall h, is_u32 h -> is_u32 (lit_utf8_string_hash_combine h s).
Proof. unfold lit_utf8_string_hash_combine. induction s as [| c s IH]; intros h Hh; [exact Hh |]. cbn [fold_left]. apply IH. unfold is_u32, u32. apply Z.mod_pos_bound. lia. Qed.

Section Instance.
Context (T : magic_tables) (HT : tables_ok T) (HD : tables_direct T) (m : memory) (names : Z -> option (list Z)).
Context (Hnames : forall p s, names p = Some s -> string_is T m p s /\ (is_block p -> p + 16 < B32)).

Lemma heap_word p s : names p = Some s -> ECMA_IS_DIRECT_STRING p = false ->
  is_block p /\ exists x, string_at m p = Some x /\ is_u32 (u x) /\ ((exists n, special T s = Some (UINT n) /\ u x = n) \/ (special T s = None /\ u x = lit_utf8_string_calc_hash s)).
Proof.
  intros Hp Hd. destruct (Hnames p s Hp) as [Hs _]. destruct (string_view T HT HD m p s Hs) as [id E Hid Hr Hm Ha | id E Hid Hmax Hr Hm | n E Hn Hr Hm | n x Hb Hx (_ & _ & Hu) Hn Hmax Hr Hm | x Hb Hx (Hu & _) Hr].
  - rewrite E in Hd. unfold ecma_get_magic_string in Hd. rewrite (proj1 (direct_fields ECMA_DIRECT_STRING_MAGIC id ltac:(unfold ECMA_DIRECT_STRING_MAGIC; lia) (ids_direct T HT id Hid))) in Hd. discriminate.
  - rewrite E in Hd. unfold ecma_get_magic_string in Hd. rewrite (proj1 (direct_fields ECMA_DIRECT_STRING_MAGIC _ ltac:(unfold ECMA_DIRECT_STRING_MAGIC; lia) (ex_id T HT id Hid Hmax))) in Hd. discriminate.
  - rewrite E in Hd. unfold ecma_get_ecma_string_from_uint32 in Hd. rewrite (proj1 (direct_fields ECMA_DIRECT_STRING_UINT n ltac:(unfold ECMA_DIRECT_STRING_UINT; lia) Hn)) in Hd. discriminate.
  - split; [exact Hb |]. exists x. split; [exact Hx |]. rewrite Hu. split; [exact Hn |]. left. now exists n.
  - split; [exact Hb |]. exists x. split; [exact Hx |]. rewrite Hu. split; [| right; now split]. apply hash_combine_u32. unfold is_u32. lia.
Qed.

Definition string_names : PropertyNames.
Proof.
  refine {|
    name_key := list Z;
    key_of := names;
    hash_field p := match string_at m p with Some x => u x | None => 0 end;
    names_equal p q := match ecma_compare_ecma_non_direct_strings m p q with Some b => b | None => false end
  |}.
  - intros p s Hp Hd. destruct (Hnames p s Hp) as [Hs _]. destruct (string_view T HT HD m p s Hs) as [id E Hid _ _ _ | id E Hid Hmax _ _ | n E Hn _ _ | n x Hb _ _ _ _ _ _ | x Hb _ _ _];
      try (rewrite (block_not_direct p Hb) in Hd; discriminate).
    + exists ECMA_DIRECT_STRING_MAGIC, id. pose proof (ids_direct T HT id Hid). unfold ECMA_DIRECT_STRING_MAX_IMM, ECMA_DIRECT_STRING_MAGIC, ECMA_DIRECT_STRING_SPECIAL in *. splits; try lia. exact E.
    + exists ECMA_DIRECT_STRING_MAGIC, (LIT_MAGIC_STRING__COUNT T + id). pose proof (ex_id T HT id Hid Hmax). unfold ECMA_DIRECT_STRING_MAX_IMM, ECMA_DIRECT_STRING_MAGIC, ECMA_DIRECT_STRING_SPECIAL in *. splits; try lia. exact E.
    + exists ECMA_DIRECT_STRING_UINT, n. unfold ECMA_DIRECT_STRING_MAX_IMM, ECMA_DIRECT_STRING_UINT, ECMA_DIRECT_STRING_SPECIAL in *. splits; try lia. exact E.
  - intros p s Hp Hd. destruct (heap_word p s Hp Hd) as (Hb & x & -> & Hu & _). split; [exact Hb |]. split; [| exact Hu]. exact (proj2 (Hnames p s Hp) Hb).
  - intros p q s Hp Hq Hd. destruct (Hnames p s Hp) as [Hs _]. destruct (Hnames q s Hq) as [Ht _]. destruct (string_direct T HT HD m p s Hs) as [(_ & r & Hr & Huniq) | (Hn & _)]; [exact (Huniq q s Ht Hr) | congruence].
  - intros p q s t Hp Hq Dp Dq. rewrite (compare_non_direct_spec T HT HD m p q s t (proj1 (Hnames p s Hp)) (proj1 (Hnames q t Hq)) Dp Dq). reflexivity.
  - intros p q s Hp Hq Dp Dq. destruct (heap_word p s Hp Dp) as (_ & x & -> & _ & Hx). destruct (heap_word q s Hq Dq) as (_ & y & -> & _ & Hy).
    destruct Hx as [(n & En & ->) | (En & ->)], Hy as [(n' & En' & ->) | (En' & ->)]; congruence.
Defined.

(** The hash of a name is that of the string *)
Lemma names_hash p s : names p = Some s -> StringData.ecma_string_hash m p = Some (ecma_string_hash (PN := string_names) p).
Proof.
  intros Hp. unfold StringData.ecma_string_hash, ecma_string_hash. destruct (ECMA_IS_DIRECT_STRING p) eqn:Hd; [reflexivity |]. destruct (heap_word p s Hp Hd) as (_ & x & Hx & _). cbn [hash_field string_names]. now rewrite Hx.
Qed.
End Instance.
