(* ===== verification/PropDemo.v ===== *)
(** * Property lists of a small engine

    An instance of the property lists whose blocks are those of the memory manager of
    Jmem.v and whose names are strings: the integers below 1000, and two blocks with the
    characters of the same string. *)
From Stdlib Require Import ZArith Lia Bool List.
From stdpp Require Import base gmap list.
From S2P Require Import Prelude LitChars LitStrings JmemHeap JmemPointers Values Jmem JmemSpec BlockHeap MagicStrings MagicTable StringData Decimal StringRepr StringAccess Ownership Release StringTheory.
From S2P Require Import PropNames PropHashmap PropProbing Properties PropState PropMemory PropCache PropMap PropCreate PropDelete PropUpdate PropHeap.
Import ListNotations.
#[local] Open Scope Z_scope.

(** ** Names *)

(** The string "ab", twice *)
Definition demo_strings : memory := <[64 := (11, Some (BLOCK_STRING example_string))]> (<[96 := (11, Some (BLOCK_STRING example_string))]> ∅).

Definition demo_names (p : Z) : option (list Z) :=
  let n := ECMA_GET_DIRECT_STRING_VALUE p in
  if (0 <=? n) && (n <? 1000) && (p =? ecma_get_ecma_string_from_uint32 n) then Some (decimal n)
  else if (p =? 64) || (p =? 96) then Some [97; 98] else None.

Lemma number_is (m : memory) n : 0 <= n <= ECMA_DIRECT_STRING_MAX_IMM -> string_is default_tables m (ecma_get_ecma_string_from_uint32 n) (decimal n).
Proof.
  intros Hn. assert (Hu : is_u32 n) by (unfold is_u32, ECMA_DIRECT_STRING_MAX_IMM in *; lia). destruct (decimal_text n Hu) as [Htext Hsize]. split; [exact Htext |]. split; [exact Hsize |].
  rewrite (proj1 (special_number default_tables default_tables_ok (decimal n) n) (proj2 (number_of_some (decimal n) n) (conj Hu eq_refl))). destruct (Z.leb_spec n ECMA_DIRECT_STRING_MAX_IMM); [reflexivity | lia].
Qed.

Lemma demo_text p : p = 64 \/ p = 96 -> string_is default_tables demo_strings p [97; 98].
Proof.
  intros Hp. assert (Ha : Forall is_ascii [97; 98]) by (repeat constructor; unfold is_ascii; lia). split; [now apply text_ascii |]. split; [now vm_compute |].
  assert (special default_tables [97; 98] = None) as -> by now vm_compute. split; [destruct Hp as [-> | ->]; (split; [lia |]); [now exists 8 | now exists 12] |].
  exists example_string. split; [destruct Hp as [-> | ->]; reflexivity |]. split; [now vm_compute |]. split; [discriminate |]. now splits.
Qed.

Lemma demo_names_ok p s : demo_names p = Some s -> string_is default_tables demo_strings p s /\ (is_block p -> p + 16 < B32).
Proof.
  unfold demo_names. destruct (_ && _) eqn:E0.
  2: { destruct (_ || _) eqn:E1; [| discriminate]. intros [= <-]. assert (Hp : p = 64 \/ p = 96) by (apply orb_true_iff in E1; rewrite !Z.eqb_eq in E1; exact E1). split; [now apply demo_text |]. destruct Hp as [-> | ->]; reflexivity. }
  apply andb_prop in E0 as [E0 E]. apply andb_prop in E0 as [E0 E1]. apply Z.leb_le in E0. apply Z.ltb_lt in E1. apply Z.eqb_eq in E.
  intros [= <-]. set (n := ECMA_GET_DIRECT_STRING_VALUE p) in *. assert (Hr : 0 <= n <= ECMA_DIRECT_STRING_MAX_IMM) by (unfold ECMA_DIRECT_STRING_MAX_IMM; change (2 ^ 59) with 576460752303423488; lia). rewrite E. split; [now apply number_is |].
  intros Hb. apply block_not_direct in Hb. unfold ecma_get_ecma_string_from_uint32 in Hb. rewrite (proj1 (direct_fields ECMA_DIRECT_STRING_UINT n ltac:(unfold ECMA_DIRECT_STRING_UINT; lia) Hr)) in Hb. discriminate.
Qed.

#[local] Instance demo_property_names : PropertyNames := string_names default_tables default_tables_ok default_direct demo_strings demo_names demo_names_ok.

(** ** Memory *)

(** A heap of 8 KB with pages of 16 cells *)
Definition demo_memory : jmem_config := mk_config 8200 4096 16.

Lemma demo_memory_ok : jmem_config_ok demo_memory.
Proof. split; [split; [now split | exists 1024; reflexivity | now split] | easy | reflexivity]. Qed.

#[local] Instance demo_property_heap : PropertyHeap := jmem_lists demo_memory demo_memory_ok.

(** ** The start *)

Section Start.
Context {PN : PropertyNames} {PH : PropertyHeap}.

Definition free_entry : ecma_lcache_hash_entry_t := mk_entry (0, false) 0.

(** Objects without properties *)
Definition new_world (ids : list Z) (h : prop_heap) : pworld :=
  mk_pworld ∅ (list_to_map (map (fun o => (o, mk_object JMEM_CP_NULL true)) ids)) (replicate 128 [free_entry; free_entry]) ECMA_PROP_HASHMAP_ALLOC_ON false h [].

Lemma new_world_rep refs ids h : holding h ∅ -> Forall (fun o => 0 < o < B32) ids -> rep_m refs (fun _ => map_is) (new_world ids h) (list_to_map (map (fun o => (o, (None, []))) ids)) [].
Proof.
  intros Hh Hids.
  assert (Hin : forall A (x : A) o a, (list_to_map (map (fun o => (o, x)) ids) : gmap Z A) !! o = Some a -> a = x /\ o ∈ ids).
  { intros A x o a H. apply elem_of_list_to_map_2, list_elem_of_fmap in H as (o' & E & Ho). injection E as -> ->. now split. }
  assert (Hsome : forall A (x : A) o, o ∈ ids -> (list_to_map (map (fun o => (o, x)) ids) : gmap Z A) !! o = Some x).
  { intros A x o. clear Hin. induction Hids as [| o' ids Ho' _ IH]; intros H; [now apply elem_of_nil in H |]. cbn [map list_to_map foldr fst snd].
    destruct (decide (o = o')) as [-> | Hne]; [apply lookup_insert_eq |]. rewrite lookup_insert_ne by congruence. apply IH. now apply elem_of_cons in H as [H | H]. }
  constructor; cbn [new_world cells objects lcache heap].
  - now rewrite fmap_empty.
  - intros cp c H. now rewrite lookup_empty in H.
  - intros o. destruct (decide (o ∈ ids)) as [Ho | Ho].
    + rewrite !Hsome by exact Ho. split; [reflexivity |]. unfold accs. destruct (refs o); constructor.
    + destruct (list_to_map (map (fun o => (o, mk_object JMEM_CP_NULL true)) ids) !! o) eqn:E1; [now apply Hin in E1 as [_ E1] |].
      destruct (list_to_map (map (fun o => (o, (None, []))) ids) !! o) eqn:E2; [now apply Hin in E2 as [_ E2] | exact I].
  - intros o g H. apply Hin in H as [_ H]. rewrite Forall_forall in Hids. now apply Hids.
  - intros o o' g g' c H _ Hc _. apply Hin in H as [-> _]. unfold cells_of, accs in Hc. destruct (refs o); now apply elem_of_nil in Hc.
  - intros o g H. apply Hin in H as [-> _]. unfold cells_of, accs. split; [destruct (refs o); constructor | split; constructor].
  - intros o g c H Hc. apply Hin in H as [-> _]. unfold cells_of, accs in Hc. destruct (refs o); now apply elem_of_nil in Hc.
  - intros cp c H. now rewrite lookup_empty in H.
  - constructor.
    + reflexivity.
    + apply Forall_replicate. reflexivity.
    + intros r row e H He Hu. apply lookup_replicate in H as [-> _]. rewrite !elem_of_cons in He. destruct He as [-> | [-> | He]]; try discriminate. now apply elem_of_nil in He.
    + intros o g q p H Hp. apply Hin in H as [-> _]. discriminate.
    + intros r row H. apply lookup_replicate in H as [-> _]. vm_compute. constructor.
Qed.
End Start.

Definition demo_start : pworld := new_world [1; 2] (jmem_heap_init demo_memory).
