(* ===== verification/PropSpec.v ===== *)
(** * What property lists promise

    An object is a list of properties, the newest first, no name twice.  Requests to
    Properties.v (search, creation of data properties and accessors, deletion, stores and
    changes of attributes) answer and act as they do on such lists, whatever the hash maps,
    the cache and the memory manager do. *)
From Stdlib Require Import ZArith Lia Bool List.
From stdpp Require Import base gmap list.
From S2P Require Import Prelude JmemHeap JmemPointers Values Jmem StringData PropNames PropHashmap PropProbing Properties PropState PropMemory PropCache PropMap PropCreate PropDelete PropUpdate PropHeap PropDemo.
Import ListNotations.
#[local] Open Scope Z_scope.

(** ** Requests *)

Inductive attribute := WRITABLE | ENUMERABLE | CONFIGURABLE.

Inductive request :=
| FIND (np : Z)
| CREATE (np attributes value : Z)
| CREATE_ACCESSOR (np getter_cp setter_cp attributes : Z)
| STORE (np value : Z)
| SET (a : attribute) (np : Z) (value : bool)
| DELETE (np : Z).

Definition request_name (r : request) : Z :=
  match r with FIND np | CREATE np _ _ | CREATE_ACCESSOR np _ _ _ | STORE np _ | SET _ np _ | DELETE np => np end.

Definition attribute_flag (a : attribute) : Z :=
  match a with WRITABLE => ECMA_PROPERTY_FLAG_WRITABLE | ENUMERABLE => ECMA_PROPERTY_FLAG_ENUMERABLE | CONFIGURABLE => ECMA_PROPERTY_FLAG_CONFIGURABLE end.
Definition attribute_setter (a : attribute) : Z -> bool -> Z :=
  match a with WRITABLE => ecma_set_property_writable_attr | ENUMERABLE => ecma_set_property_enumerable_attr | CONFIGURABLE => ecma_set_property_configurable_attr end.

(** Only data properties are writable and have a value *)
Definition needs_data (r : request) : bool := match r with STORE _ _ | SET WRITABLE _ _ => true | _ => false end.

Section Spec.
Context {PN : PropertyNames} {PH : PropertyHeap}.

(** ** What the code does *)

(** The flags of a property without those of the cache and the name, and its value *)
Definition observe (s : slot) : Z * option Z := (Z.land (types s) 47, if flag_set (types s) ECMA_PROPERTY_FLAG_DATA then Some (values s) else None).

Definition act (o : Z) (r : request) (q : Z * bool) : P unit :=
  match r with
  | STORE _ value => store_value q value
  | SET a _ value => set_attribute (attribute_setter a) q value
  | DELETE _ => ecma_delete_property o q
  | _ => mret tt
  end.

(** A property is created where there is none *)
Definition create_absent (o : Z) (r : request) : P unit :=
  match r with
  | CREATE np attributes value => q ← ecma_create_named_data_property o np attributes; store_value q value
  | CREATE_ACCESSOR np getter_cp setter_cp attributes => ecma_create_named_accessor_property o np getter_cp setter_cp attributes;; mret tt
  | _ => mret tt
  end.

Definition exec (o : Z) (r : request) : P (option (Z * option Z)) :=
  property_p ← ecma_find_named_property o (request_name r);
  match property_p with
  | Some q =>
      s ← get_property q;
      (if needs_data r && negb (flag_set (types s) ECMA_PROPERTY_FLAG_DATA) then mret tt else act o r q);;
      mret (Some (observe s))
  | None => create_absent o r;; mret None
  end.

Fixpoint exec_all (l : list (Z * request)) : P (list (option (Z * option Z))) :=
  match l with
  | [] => mret []
  | (o, r) :: l => a ← exec o r; rest ← exec_all l; mret (a :: rest)
  end.

(** ** What it means *)

(** An accessor has no value *)
Record entry := mk_property { e_name : option name_key; e_flags : Z; e_value : option Z }.
Abbreviation store := (gmap Z (list entry)).

Definition lookup_entry (k : option name_key) (l : list entry) : option entry := List.find (fun e => bool_decide (e_name e = k)) l.
Definition update_entry (k : option name_key) (f : entry -> entry) (l : list entry) : list entry := map (fun e => if bool_decide (e_name e = k) then f e else e) l.
Definition remove_entry (k : option name_key) (l : list entry) : list entry := List.filter (fun e => negb (bool_decide (e_name e = k))) l.

Definition is_data (e : entry) : bool := ECMA_PROPERTY_FLAG_DATA <=? e_flags e.
Definition answer_of (e : entry) : Z * option Z := (e_flags e, e_value e).

Definition act_spec (r : request) (l : list entry) : list entry :=
  let k := key_of (request_name r) in
  match r with
  | STORE _ value => update_entry k (fun e => mk_property (e_name e) (e_flags e) (Some value)) l
  | SET a _ value => update_entry k (fun e => mk_property (e_name e) (attribute_put (e_flags e) (attribute_flag a) value) (e_value e)) l
  | DELETE _ => remove_entry k l
  | _ => l
  end.

Definition create_spec (r : request) (l : list entry) : list entry :=
  let k := key_of (request_name r) in
  match r with
  | CREATE _ attributes value => mk_property k (ECMA_PROPERTY_FLAG_DATA + attributes) (Some value) :: l
  | CREATE_ACCESSOR _ _ _ attributes => mk_property k attributes None :: l
  | _ => l
  end.

Definition step_spec (r : request) (l : list entry) : list entry * option (Z * option Z) :=
  match lookup_entry (key_of (request_name r)) l with
  | Some e => (if needs_data r && negb (is_data e) then l else act_spec r l, Some (answer_of e))
  | None => (create_spec r l, None)
  end.

Fixpoint run_spec (l : list (Z * request)) (st : store) : store * list (option (Z * option Z)) :=
  match l with
  | [] => (st, [])
  | (o, r) :: l =>
      let '(ps, a) := step_spec r (default [] (st !! o)) in
      let '(st, rest) := run_spec l (<[o := ps]> st) in (st, a :: rest)
  end.

(** ** Their relation *)

Definition entry_of (p : prop) : entry := mk_property (key p) (p_flags p) (if is_accessor p then None else Some (p_value p)).
Definition entries (l : chain) : list entry := map entry_of (contents l).

(** No list has references for values here *)
Abbreviation rep := (rep_m (fun _ => false) (fun _ => map_is)).

Definition refines (w : pworld) (st : store) : Prop := exists G, rep w G [] /\ st = (fun g => entries g.2) <$> G.

(** Names that are internal are not for attributes and accessors *)
Definition request_ok (st : store) (c : Z * request) : Prop :=
  let np := request_name c.2 in
  is_name np /\ is_Some (st !! c.1)
  /\ match c.2 with
     | CREATE _ attributes _ => 0 <= attributes < 8
     | CREATE_ACCESSOR _ _ _ attributes => 0 <= attributes < 8 /\ name_type np <> ECMA_DIRECT_STRING_SPECIAL
     | SET _ _ _ => name_type np <> ECMA_DIRECT_STRING_SPECIAL
     | _ => True
     end.

Definition creates (r : request) : Prop := match r with CREATE _ _ _ | CREATE_ACCESSOR _ _ _ _ => True | _ => False end.

(** ** Lists of entries *)

Lemma lookup_mid k A e B : e_name e = k -> Forall (fun x => e_name x <> k) A -> lookup_entry k (A ++ e :: B) = Some e.
Proof.
  intros He HA. unfold lookup_entry. induction HA as [| x A Hx _ IH]; cbn [app List.find]; [now rewrite bool_decide_true | now rewrite bool_decide_false].
Qed.

Lemma update_out k f A : Forall (fun x => e_name x <> k) A -> update_entry k f A = A.
Proof. unfold update_entry. induction 1 as [| x A Hx _ IH]; cbn [map]; [reflexivity |]. now rewrite bool_decide_false, IH. Qed.

Lemma update_mid k f A e B : e_name e = k -> Forall (fun x => e_name x <> k) A -> Forall (fun x => e_name x <> k) B -> update_entry k f (A ++ e :: B) = A ++ f e :: B.
Proof.
  intros He HA HB. unfold update_entry. rewrite map_app. cbn [map]. rewrite (bool_decide_true _ He). f_equal; [now apply (update_out k f A) |]. f_equal. now apply (update_out k f B).
Qed.

Lemma update_first k f e B : e_name e = k -> Forall (fun x => e_name x <> k) B -> update_entry k f (e :: B) = f e :: B.
Proof. intros He. exact (update_mid k f [] e B He (List.Forall_nil _)). Qed.

Lemma remove_out k A : Forall (fun x => e_name x <> k) A -> remove_entry k A = A.
Proof. unfold remove_entry. induction 1 as [| x A Hx _ IH]; cbn [List.filter]; [reflexivity |]. rewrite bool_decide_false by exact Hx. cbn [negb]. now rewrite IH. Qed.

Lemma remove_mid k A e B : e_name e = k -> Forall (fun x => e_name x <> k) A -> Forall (fun x => e_name x <> k) B -> remove_entry k (A ++ e :: B) = A ++ B.
Proof.
  intros He HA HB. unfold remove_entry. rewrite List.filter_app. cbn [List.filter]. rewrite (bool_decide_true _ He). cbn [negb]. f_equal; [now apply (remove_out k A) | now apply (remove_out k B)].
Qed.

(** ** Lists of properties *)

Lemma in_prop l p : NoDup (cps l) -> In p (contents l) -> exists q, prop_at l q = Some p.
Proof.
  induction l as [| [c x] l IH]; [easy |]. cbn [cps map fst]. rewrite contents_cons. intros Hnd Hin. apply NoDup_cons in Hnd as [Hc Hnd]. apply in_app_or in Hin as [Hin | Hin].
  - assert (H : exists b, aget x b = Some p).
    { destruct x as [a b]. unfold props_of in Hin. cbn [fst snd] in Hin. apply in_app_or in Hin as [Hin | Hin]; [exists false; destruct a | exists true; destruct b]; cbn in *; (destruct Hin as [-> | Hin] || idtac); easy. }
    destruct H as [b Hb]. exists (c, b). unfold prop_at. cbn [pair_in fst snd]. now rewrite Z.eqb_refl.
  - destruct (IH Hnd Hin) as [q Hq]. exists q. unfold prop_at in *. cbn [pair_in]. destruct (Z.eqb_spec q.1 c) as [E |]; [| exact Hq].
    destruct Hc. rewrite <- E. exact (prop_at_cps l q p Hq).
Qed.

(** A property is the only one of its name *)
Lemma others l A p B : chain_ok l -> contents l = A ++ p :: B -> Forall (fun x => e_name x <> key p) (map entry_of A) /\ Forall (fun x => e_name x <> key p) (map entry_of B).
Proof.
  intros [_ Hnd] E. rewrite E, map_app in Hnd. cbn [map] in Hnd. apply NoDup_app in Hnd as (_ & HA & HB). apply NoDup_cons in HB as [HB _].
  split; apply Forall_map, Forall_forall; intros x Hx E'; cbn [entry_of e_name] in E'.
  - apply (HA (key x)); [apply list_elem_of_In, in_map, list_elem_of_In, Hx | rewrite E'; left].
  - apply HB. rewrite <- E'. apply list_elem_of_In, in_map, list_elem_of_In, Hx.
Qed.

Lemma found_lookup l k r : chain_ok l -> NoDup (cps l) -> found l k r ->
  match r with
  | Some q => exists p, prop_at l q = Some p /\ key p = Some k /\ lookup_entry (Some k) (entries l) = Some (entry_of p)
  | None => lookup_entry (Some k) (entries l) = None
  end.
Proof.
  intros Hok Hnd Hf. destruct r as [q |]; cbn [found] in Hf.
  - destruct Hf as (p & Hp & Hk). exists p. split; [exact Hp |]. split; [exact Hk |]. destruct (in_split p _ (prop_in l q p Hp)) as (A & B & E). destruct (others l A p B Hok E) as [HA HB].
    unfold entries. rewrite E, map_app. cbn [map]. rewrite Hk in HA. now apply lookup_mid.
  - unfold lookup_entry. destruct (List.find _ _) as [e |] eqn:E; [| reflexivity]. apply List.find_some in E as [Hin He]. apply bool_decide_eq_true in He.
    apply in_map_iff in Hin as (p & <- & Hin). destruct (in_prop l p Hnd Hin) as [q Hq]. now destruct (Hf q p Hq).
Qed.

(** ** One property *)

Lemma type_bits t f b n : 0 <= f < 64 -> f mod 32 < 16 -> 0 <= b <= 1 -> t = f + 16 * b + 64 * n -> t mod 16 + 32 * (t / 32 mod 2) = f /\ t mod 64 = f + 16 * b.
Proof.
  intros Hf Hl Hb ->. assert (H1 : (f + 16 * b + 64 * n) mod 16 = f mod 16) by (Z.div_mod_to_equations; lia).
  assert (H2 : (f + 16 * b + 64 * n) / 32 = f / 32 + 2 * n) by (Z.div_mod_to_equations; lia). rewrite H1, H2. clear H1 H2.
  assert (H3 : f + 16 * b < 64) by (Z.div_mod_to_equations; lia). split; Z.div_mod_to_equations; lia.
Qed.

Lemma observe_slot s p : prop_ok p -> slot_is s (Some p) -> observe s = answer_of (entry_of p) /\ flag_set (types s) ECMA_PROPERTY_FLAG_DATA = negb (is_accessor p).
Proof.
  intros Hp (_ & Hv & cached & Ht). destruct (marked_types p cached _ Hp Ht) as (Hr & _). pose proof Hp as (Hn & Hf & Hlow & _). destruct (name_view (p_name p) Hn) as (Hty & _).
  assert (E : Z.land (types s) 47 = types s mod 16 + 32 * (types s / 32 mod 2)).
  { assert (H : forallb (fun k => let t := Z.of_nat k in Z.land t 47 =? t mod 16 + 32 * (t / 32 mod 2)) (seq 0 256) = true) by (vm_compute; reflexivity).
    rewrite forallb_forall in H. specialize (H (Z.to_nat (types s)) ltac:(apply in_seq; lia)). cbv zeta in H. rewrite Z2Nat.id in H by lia. now apply Z.eqb_eq in H. }
  assert (Hm : mark cached = 16 * Z.b2z cached /\ 0 <= Z.b2z cached <= 1) by (destruct cached; split; (reflexivity || (cbn [Z.b2z]; lia))). destruct Hm as [Hm Hb].
  destruct (type_bits (types s) (p_flags p) (Z.b2z cached) (name_type (p_name p)) Hf Hlow Hb ltac:(lia)) as [E1 E2]. rewrite <- Hm in E2.
  assert (E3 : flag_set (types s) ECMA_PROPERTY_FLAG_DATA = negb (is_accessor p)).
  { rewrite data_flag, E2 by exact Hr. unfold is_accessor. change ECMA_PROPERTY_FLAG_DATA with 32. rewrite <- Z.leb_antisym. destruct (Z.leb_spec 32 (p_flags p)), (Z.leb_spec 32 (p_flags p + mark cached)); try reflexivity; exfalso; Z.div_mod_to_equations; lia. }
  split; [| exact E3]. unfold observe, answer_of, entry_of. cbn [e_flags e_value]. rewrite E, E1, E3, Hv. now destruct (is_accessor p).
Qed.

Lemma put_property_run w q x s : cells w !! q.1 = Some (PAIR x) -> put_property q s w = PDONE _ tt (set_cells (<[q.1 := PAIR (set_slot x q.2 s)]> (cells w)) w).
Proof. intros Hx. unfold put_property, mbind, P_bind, get_pair. rewrite Hx. unfold put_pair. now rewrite Hx. Qed.

Lemma get_property_run w q x : cells w !! q.1 = Some (PAIR x) -> get_property q w = PDONE _ (get_slot x q.2) w.
Proof. intros Hx. unfold get_property, mbind, P_bind, get_pair. now rewrite Hx. Qed.

Section Request.
Context (w : pworld) (G : gmap Z (option Z * chain)) (o : Z) (c : option Z) (l : chain) (Hrep : rep w G []) (Hg : G !! o = Some (c, l)).

(** The list has another property in the place of one *)
Definition replaced (q : Z * bool) (p p' : prop) (w' : pworld) : Prop := exists l', replaces l q p p' l' /\ rep w' (<[o := (c, l')]> G) [].

Lemma store_value_spec q p value : prop_at l q = Some p -> is_accessor p = false ->
  pruns False (store_value q value) w (fun _ w' => replaced q p (mk_prop (p_name p) (p_flags p) value) w').
Proof.
  intros Hp Hdata. destruct (list_memory _ _ w G [] Hrep o _ q p Hg Hp) as [(x & Hx & Hs) Hok]. unfold store_value. eapply pruns_done; [exact (get_property_run w q x Hx) |]. eapply pruns_final; [exact (put_property_run w q x _ Hx) |].
  eapply (rep_update _ w G [] o c l q p _ x); try assumption; [| | reflexivity].
  - constructor; [destruct Hok as (? & ? & ? & ?); now repeat split | reflexivity | reflexivity | congruence].
  - destruct Hs as (E1 & _ & cached & E2). split; [exact E1 |]. split; [reflexivity |]. exists cached. exact E2.
Qed.

Lemma attribute_flag_is a : is_attribute (attribute_flag a) = true.
Proof. now destruct a. Qed.

Lemma setter_put a t value : 0 <= t < 256 -> attribute_setter a t value = attribute_put t (attribute_flag a) value.
Proof. intros Ht. destruct a; now apply with_flag_put. Qed.

Lemma set_attribute_spec a q p value : prop_at l q = Some p -> name_type (p_name p) <> ECMA_DIRECT_STRING_SPECIAL ->
  pruns False (set_attribute (attribute_setter a) q value) w (fun _ w' => replaced q p (mk_prop (p_name p) (attribute_put (p_flags p) (attribute_flag a) value) (p_value p)) w').
Proof.
  intros Hp Hsp. destruct (list_memory _ _ w G [] Hrep o _ q p Hg Hp) as [(x & Hx & Hs) Hok]. unfold set_attribute. eapply pruns_done; [exact (get_property_run w q x Hx) |]. eapply pruns_final; [exact (put_property_run w q x _ Hx) |].
  destruct Hs as (E1 & E2 & cached & Et). destruct (marked_types p cached _ Hok Et) as (Hr & Hcached & _). set (s := get_slot x q.2) in *. pose proof Hok as (Hn & Hf & Hlow & _). destruct (name_view (p_name p) Hn) as (Hty & _).
  pose proof (attribute_flag_is a) as Hflag. destruct (attribute_bits (p_flags p) (attribute_flag a) value Hflag ltac:(lia)) as (Hf0 & Hfm & Hfd).
  assert (Hfr : 0 <= attribute_put (p_flags p) (attribute_flag a) value < 64 /\ attribute_put (p_flags p) (attribute_flag a) value mod 32 < 16) by (Z.div_mod_to_equations; lia).
  set (p' := mk_prop (p_name p) (attribute_put (p_flags p) (attribute_flag a) value) (p_value p)).
  assert (Hok' : prop_ok p') by (split; [exact Hn | split; [apply Hfr | split; [apply Hfr | easy]]]).
  assert (Et' : types (set_types s (attribute_setter a (types s) value)) = p_flags p' + mark cached + 64 * name_type (p_name p')).
  { cbn [set_types types]. rewrite setter_put by exact Hr. rewrite Et. unfold mark, ECMA_PROPERTY_FLAG_LCACHED.
    replace (p_flags p + (if cached then 16 else 0) + 64 * name_type (p_name p)) with (p_flags p + 8 * ((if cached then 2 else 0) + 8 * name_type (p_name p))) by (destruct cached; lia).
    rewrite attribute_put_add by exact Hflag. cbn [p_flags p_name p']. destruct cached; lia. }
  eapply (rep_update _ w G [] o c l q p p' x); try assumption.
  - constructor; [exact Hok' | reflexivity | | reflexivity]. unfold is_accessor, ECMA_PROPERTY_FLAG_DATA. cbn [p_flags p']. destruct (Z.ltb_spec (p_flags p) 32), (Z.ltb_spec (attribute_put (p_flags p) (attribute_flag a) value) 32); try reflexivity; exfalso; Z.div_mod_to_equations; lia.
  - split; [exact E1 |]. split; [exact E2 |]. exists cached. exact Et'.
  - fold s. rewrite Hcached. now apply (marked_types p' cached _ Hok').
Qed.

(** The lists stay as they are but the one of the object *)
Definition now_has (w' : pworld) (l0 : list entry) : Prop := exists G' l', rep w' G' [] /\ snd <$> G' = <[o := l']> (snd <$> G) /\ entries l' = l0.

Lemma replaced_has q p p' f w' : chain_ok l -> replaced q p p' w' -> entry_of p' = f (entry_of p) -> now_has w' (update_entry (key p) f (entries l)).
Proof.
  intros Hok (l' & [(A & B & E & E') _ _] & Hrep') Hf. exists (<[o := (c, l')]> G), l'. split; [exact Hrep' |]. split; [apply chains_insert |].
  destruct (others l A p B Hok E) as [HA HB]. unfold entries. rewrite E, E', !map_app. cbn [map]. rewrite update_mid by (assumption || reflexivity). now rewrite Hf.
Qed.

Lemma same_name np p : key_of np = key p -> is_name np -> name_type np <> ECMA_DIRECT_STRING_SPECIAL -> name_type (p_name p) <> ECMA_DIRECT_STRING_SPECIAL.
Proof.
  intros Hk [k Ek] Hsp E. apply Hsp. rewrite Ek in Hk. destruct (ECMA_IS_DIRECT_STRING (p_name p)) eqn:Ed; [| unfold name_type in E; rewrite Ed in E; discriminate].
  now rewrite (direct_unique (p_name p) np k (eq_sym Hk) Ek Ed).
Qed.

Lemma act_run r q p : prop_at l q = Some p -> key_of (request_name r) = key p -> (needs_data r = true -> is_accessor p = false) ->
  request_ok ((fun g => entries g.2) <$> G) (o, r) -> pruns False (act o r q) w (fun _ w' => now_has w' (act_spec r (entries l))).
Proof.
  intros Hp Hk Hdata (Hn & _ & Hr). destruct (rep_nodup _ _ _ _ _ Hrep o _ Hg) as [_ Hok]. cbn [fst snd] in *.
  assert (Hsame : now_has w (entries l)) by (exists G, l; split; [exact Hrep |]; split; [symmetry; apply insert_id; now rewrite lookup_fmap, Hg | reflexivity]).
  destruct r as [np | np attributes value | np getter setter attributes | np value | a np value | np]; cbn [act act_spec request_name needs_data] in *; try (apply pruns_ret; exact Hsame); rewrite Hk.
  - eapply pruns_mono; [exact (store_value_spec q p value Hp (Hdata eq_refl)) |]. intros [] w' Hw'. apply (replaced_has q p _ _ w' Hok Hw').
    unfold entry_of. cbn [e_name e_flags]. unfold is_accessor in *. cbn [p_flags p_value]. now rewrite (Hdata eq_refl).
  - pose proof (same_name np p Hk Hn Hr) as Hsp. eapply pruns_mono; [exact (set_attribute_spec a q p value Hp Hsp) |]. intros [] w' Hw'. apply (replaced_has q p _ _ w' Hok Hw').
    unfold entry_of. cbn [e_name e_flags e_value]. f_equal. unfold is_accessor. cbn [p_flags p_value]. destruct (proj2 (list_memory _ _ w G [] Hrep o _ q p Hg Hp)) as (_ & Hf & _).
    destruct (attribute_bits (p_flags p) (attribute_flag a) value (attribute_flag_is a) ltac:(lia)) as (Hf0 & Hfm & Hfd). change ECMA_PROPERTY_FLAG_DATA with 32.
    destruct (Z.ltb_spec (p_flags p) 32), (Z.ltb_spec (attribute_put (p_flags p) (attribute_flag a) value) 32); try reflexivity; exfalso; Z.div_mod_to_equations; lia.
  - eapply pruns_mono; [apply (delete_property_spec _ w G [] o c l q p Hrep); [now apply Forall_nil | exact Hg | exact Hp | discriminate] |].
    intros _ w' (G' & c' & l' & t & Hrep' & Hg' & [(A & B & E & E') _] & _ & Hs & _). exists G', l'. split; [exact Hrep' |]. split; [exact Hs |].
    destruct (others l A p B Hok E) as [HA HB]. unfold entries. rewrite E, E', !map_app. cbn [map]. now rewrite remove_mid.
Qed.

(** ** Creation *)

Lemma absent k : key_of k <> None -> lookup_entry (key_of k) (entries l) = None -> Forall (fun p => key p <> key_of k) (contents l).
Proof.
  intros _ H. apply Forall_forall. intros p Hp E. unfold lookup_entry in H. pose proof (List.find_none _ _ H (entry_of p)) as N. cbv beta in N.
  rewrite bool_decide_true in N by exact E. specialize (N (in_map _ _ _ (proj1 (list_elem_of_In _ _) Hp))). discriminate.
Qed.

Lemma created_has p q w' : created (fun _ => false) w G [] o l p q w' -> now_has w' (entry_of p :: entries l).
Proof. intros (G' & c' & l' & Hrep' & _ & Ha & Hs & _). exists G', l'. split; [exact Hrep' |]. split; [exact Hs |]. unfold entries. now rewrite (adds_contents _ _ _ _ Ha). Qed.

Lemma data_flags attributes : 0 <= attributes < 8 -> Z.lor ECMA_PROPERTY_FLAG_DATA attributes = ECMA_PROPERTY_FLAG_DATA + attributes.
Proof. intros H. change ECMA_PROPERTY_FLAG_DATA with (1 * 2 ^ 5). rewrite lor_mul_low by lia. reflexivity. Qed.
End Request.

Lemma now_has_after w3 G1 G2 o l2 l0 : snd <$> G2 = <[o := l2]> (snd <$> G1) -> now_has G2 o w3 l0 -> now_has G1 o w3 l0.
Proof. intros Hs (G' & l' & Hrep & Hs' & He). exists G', l'. split; [exact Hrep |]. split; [now rewrite Hs', Hs, insert_insert_eq | exact He]. Qed.

Lemma create_absent_run w G o c l r : rep w G [] -> G !! o = Some (c, l) -> request_ok ((fun g => entries g.2) <$> G) (o, r) -> lookup_entry (key_of (request_name r)) (entries l) = None ->
  pruns (creates r) (create_absent o r) w (fun _ w' => now_has G o w' (create_spec r (entries l))).
Proof.
  intros Hrep Hg (Hn & _ & Hr) Hnone. cbn [fst snd] in *. pose proof (absent l (request_name r) ltac:(destruct Hn as [k ->]; discriminate) Hnone) as Habs.
  assert (Hsame : now_has G o w (entries l)) by (exists G, l; split; [exact Hrep |]; split; [symmetry; apply insert_id; now rewrite lookup_fmap, Hg | reflexivity]).
  destruct r as [np | np attributes value | np getter setter attributes | np value | a np value | np]; cbn [create_absent create_spec request_name creates] in *; try (apply pruns_ret; exact Hsame).
  - unfold ecma_create_named_data_property. rewrite data_flags by exact Hr. set (p := mk_prop np (ECMA_PROPERTY_FLAG_DATA + attributes) ECMA_VALUE_UNDEFINED).
    assert (Hacc : is_accessor p = false) by (unfold is_accessor; cbn [p_flags p]; apply Z.ltb_ge; lia).
    assert (Hp : prop_ok p) by (unfold prop_ok; cbn [p p_name p_flags]; change ECMA_PROPERTY_FLAG_DATA with 32; splits; [exact Hn | lia | lia | Z.div_mod_to_equations; lia | lia]).
    assert (Hfresh : fresh (fun _ => false) o p w G [] l) by (constructor; unfold acc_of; rewrite ?Hacc; [exact Hrep | exact Habs | constructor | constructor | constructor]).
    apply pruns_bind. eapply pruns_mono; [exact (create_property_spec (fun _ => false) o p Hp w G [] c l Hfresh Hg) |].
    intros q w1 (G1 & c1 & l1 & Hrep1 & Hg1 & Ha & Hs & _). cbv beta. assert (Hq : prop_at l1 q = Some p) by (rewrite (adds_at _ _ _ _ Ha); now rewrite bool_decide_true).
    eapply pruns_stops; [| eapply pruns_mono; [exact (store_value_spec w1 G1 o c1 l1 Hrep1 Hg1 q p value Hq Hacc) |]]; [easy |]. intros [] w2 Hw2.
    destruct (rep_nodup _ _ _ _ _ Hrep1 o _ Hg1) as [_ Hok1]. apply (now_has_after w2 G G1 o l1); [exact Hs |].
    pose proof (replaced_has G1 o c1 l1 q p _ (fun e => mk_property (e_name e) (e_flags e) (Some value)) w2 Hok1 Hw2) as H.
    unfold entries in H at 1. rewrite (adds_contents _ _ _ _ Ha) in H. cbn [map] in H. rewrite (update_first _ _ (entry_of p) (map entry_of (contents l))) in H; [| reflexivity |].
    + apply H. unfold entry_of. cbn [e_name e_flags]. unfold is_accessor in *. cbn [p_flags p_value]. now rewrite Hacc.
    + apply Forall_map. eapply Forall_impl; [exact Habs |]. intros x Hx. exact Hx.
  - destruct Hr as [Hr Hsp]. unfold ecma_create_named_accessor_property. apply pruns_bind. apply pruns_bind.
    eapply pruns_mono; [exact (alloc_block_spec (fun _ => false) (fun _ => map_is) w G [] (ACCESSORS getter setter) Hrep ltac:(constructor) ltac:(split; reflexivity)) |].
    intros cp w1 (G1 & [[Hs1 _ _] _] & Hcp & _ & _ & Hrep1). cbv beta. set (p := mk_prop np attributes cp).
    assert (Hacc : is_accessor p = true) by (unfold is_accessor; cbn [p_flags p]; apply Z.ltb_lt; change ECMA_PROPERTY_FLAG_DATA with 32; lia).
    assert (Hp : prop_ok p) by (unfold prop_ok; cbn [p p_name p_flags]; splits; [exact Hn | lia | lia | Z.div_mod_to_equations; lia | easy]).
    destruct (same_lookup G G1 o c l Hs1 Hg) as [c1 Hg1].
    assert (Hfresh : fresh (fun _ => false) o p w1 G1 [] l).
    { constructor; unfold acc_of; rewrite ?Hacc; [exact Hrep1 | exact Habs | | now apply NoDup_singleton | constructor]. apply Forall_singleton. now exists getter, setter. }
    eapply pruns_mono; [exact (create_property_spec (fun _ => false) o p Hp w1 G1 [] c1 l Hfresh Hg1) |]. intros q w2 Hw2. apply pruns_ret.
    destruct (created_has w1 G1 o l p q w2 Hw2) as (G' & l' & Hrep' & Hs' & He). exists G', l'. split; [exact Hrep' |]. split; [now rewrite Hs', Hs1 |].
    rewrite He. unfold entry_of. rewrite Hacc. reflexivity.
Qed.

(** ** Requests, one and many *)

Lemma now_refines w st G o l0 : st = (fun g => entries g.2) <$> G -> now_has G o w l0 -> refines w (<[o := l0]> st).
Proof.
  intros -> (G' & l' & Hrep & Hs & <-). exists G'. split; [exact Hrep |].
  assert (E : forall H : gmap Z (option Z * chain), (fun g => entries g.2) <$> H = entries <$> (snd <$> H)) by (intros H; rewrite <- map_fmap_compose; reflexivity).
  rewrite !E, Hs. now rewrite fmap_insert.
Qed.

Lemma exec_run w st o r : refines w st -> request_ok st (o, r) ->
  pruns (creates r) (exec o r) w (fun a w' => let '(ps, a') := step_spec r (default [] (st !! o)) in a = a' /\ refines w' (<[o := ps]> st)).
Proof.
  intros (G & Hrep & ->) Hr. pose proof Hr as ([k Hk] & [ps0 Hin] & _). cbn [fst snd] in *. rewrite lookup_fmap in Hin. destruct (G !! o) as [[c l] |] eqn:Hg; [| discriminate]. clear ps0 Hin.
  rewrite lookup_fmap, Hg. change (default [] ((fun g : option Z * chain => entries g.2) <$> Some (c, l))) with (entries l). unfold exec. apply pruns_bind.
  eapply pruns_stops; [| eapply pruns_mono; [exact (find_spec _ w G [] o c l (request_name r) k Hrep (List.Forall_nil _) Hg Hk) |]]; [easy |].
  intros q w1 [Hf (G1 & Hrep1 & [Hs _ _])]. cbv beta. destruct (same_lookup G G1 o c l Hs Hg) as [c1 Hg1].
  assert (Est : (fun g => entries g.2) <$> G = (fun g => entries g.2) <$> G1).
  { assert (E : forall H : gmap Z (option Z * chain), (fun g => entries g.2) <$> H = entries <$> (snd <$> H)) by (intros H; rewrite <- map_fmap_compose; reflexivity). now rewrite !E, Hs. }
  rewrite Est in *. destruct (rep_nodup _ _ _ _ _ Hrep1 o _ Hg1) as [Hnd Hok]. pose proof (cps_nodup _ o _ Hnd) as Hcps. cbn [snd] in Hok, Hcps.
  pose proof (found_lookup l k q Hok Hcps Hf) as Hlook. rewrite <- Hk in Hlook. unfold step_spec. change (default [] (Some (entries (c, l).2))) with (entries l). destruct q as [q |].
  - destruct Hlook as (p & Hp & Ekey & ->). destruct (list_memory _ _ w1 G1 [] Hrep1 o _ q p Hg1 Hp) as [(x & Hx & Hslot) Hpok]. destruct (observe_slot _ p Hpok Hslot) as [Eobs Eflag].
    eapply pruns_done; [exact (get_property_run w1 q x Hx) |]. rewrite Eobs, Eflag, negb_involutive. cbv zeta.
    replace (is_data (entry_of p)) with (negb (is_accessor p)) by (unfold is_data, is_accessor; cbn [entry_of e_flags]; now rewrite Z.leb_antisym). rewrite negb_involutive.
    apply pruns_bind. destruct (needs_data r && is_accessor p) eqn:Eneed.
    + apply pruns_ret. apply pruns_ret. split; [reflexivity |]. rewrite insert_id by (now rewrite lookup_fmap, Hg1). now exists G1.
    + eapply pruns_stops; [| eapply pruns_mono; [apply (act_run w1 G1 o c1 l Hrep1 Hg1 r q p Hp) |]]; [easy | symmetry; exact Ekey | intros En; rewrite En in Eneed; exact Eneed | exact Hr |].
      intros [] w2 Hw2. apply pruns_ret. split; [reflexivity |]. exact (now_refines w2 _ G1 o _ eq_refl Hw2).
  - rewrite Hlook. apply pruns_bind. eapply pruns_mono; [exact (create_absent_run w1 G1 o c1 l r Hrep1 Hg1 Hr Hlook) |]. intros [] w2 Hw2. apply pruns_ret. split; [reflexivity |]. exact (now_refines w2 _ G1 o _ eq_refl Hw2).
Qed.

Lemma request_ok_insert st o l c : is_Some (st !! o) -> request_ok st c -> request_ok (<[o := l]> st) c.
Proof.
  intros Ho (H1 & H2 & H3). split; [exact H1 |]. split; [| exact H3]. destruct (decide (c.1 = o)) as [-> | Hne]; [rewrite lookup_insert_eq; now exists l | now rewrite lookup_insert_ne by congruence].
Qed.

Lemma exec_all_run cs : forall w st, refines w st -> Forall (request_ok st) cs ->
  pruns (Exists (fun c => creates c.2) cs) (exec_all cs) w (fun answers w' => let '(st', answers') := run_spec cs st in answers = answers' /\ refines w' st').
Proof.
  induction cs as [| [o r] cs IH]; intros w st Hw Hcs; cbn [exec_all run_spec].
  - apply pruns_ret. now split.
  - apply Forall_cons in Hcs as [Hr Hcs]. pose proof Hr as (_ & Ho & _). cbn [fst] in Ho. apply pruns_bind. eapply pruns_stops; [| eapply pruns_mono; [exact (exec_run w st o r Hw Hr) |]]; [intros H; now apply Exists_cons_hd |].
    intros a w1. cbv beta. destruct (step_spec r (default [] (st !! o))) as [ps a'] eqn:E. intros [-> Hw1]. apply pruns_bind.
    eapply pruns_stops; [| eapply pruns_mono; [apply (IH w1 _ Hw1) |]]; [intros H; now apply Exists_cons_tl | eapply Forall_impl; [exact Hcs |]; intros c0; now apply request_ok_insert |].
    intros rest w2. cbv beta. destruct (run_spec cs (<[o := ps]> st)) as [st' rest'] eqn:E'. intros [-> Hw2]. apply pruns_ret. now split.
Qed.

(** ** Search in the hash map and in the list *)

Lemma key_once l q q' p p' : chain_ok l -> NoDup (cps l) -> prop_at l q = Some p -> prop_at l q' = Some p' -> key p = key p' -> q = q'.
Proof.
  intros Hok Hnd Hp Hp' Hk. destruct (decide (q = q')) as [E | Hne]; [exact E | exfalso].
  assert (Ha : exists a, pair_in l q.1 = Some a) by (unfold prop_at in Hp; destruct (pair_in l q.1) as [a |]; [now exists a | discriminate]). destruct Ha as [a Ha].
  destruct (removes_put l q p a Hnd Hp Ha) as [(A & B & E & E') Hat]. destruct (others l A p B Hok E) as [HA HB].
  specialize (Hat q'). rewrite bool_decide_false in Hat by congruence. rewrite Hp' in Hat. apply prop_in in Hat. rewrite E' in Hat.
  rewrite List.Forall_forall in HA, HB. apply in_app_or in Hat as [Hin | Hin]; [apply (HA (entry_of p')) | apply (HB (entry_of p'))]; try (now apply in_map); cbn; congruence.
Qed.

Lemma found_unique l k r r' : chain_ok l -> NoDup (cps l) -> found l k r -> found l k r' -> r = r'.
Proof.
  intros Hok Hnd Hr Hr'. destruct r as [q |], r' as [q' |]; cbn [found] in *; [| | | reflexivity].
  - destruct Hr as (p & Hp & Hk), Hr' as (p' & Hp' & Hk'). f_equal. apply (key_once l q q' p p' Hok Hnd Hp Hp'). congruence.
  - destruct Hr as (p & Hp & Hk). now destruct (Hr' q p Hp).
  - destruct Hr' as (p & Hp & Hk). now destruct (Hr q' p Hp).
Qed.
End Spec.

Arguments refines {PN PH} _ _.

(** ** Properties *)

Section Claims.
Context (PN : PropertyNames) (PH : PropertyHeap).

(** C19: requests to the properties of objects (search, creation of data properties and
    accessors, stores, changes of attributes and deletion, in any order) answer as on lists
    of properties and leave the objects with those lists; only a creation may end the
    process, for lack of memory, and nothing is followed that is not there. *)
Theorem ecma_properties_refine cs w st : refines w st -> Forall (request_ok st) cs ->
  match exec_all cs w with
  | PDONE _ answers w' => answers = snd (run_spec cs st) /\ refines w' (fst (run_spec cs st))
  | PFATAL _ => Exists (fun c => creates c.2) cs
  | PFAULT _ => False
  end.
Proof. intros Hw Hcs. pose proof (exec_all_run cs w st Hw Hcs) as H. unfold pruns in H. destruct (exec_all cs w); [| exact H ..]. now destruct (run_spec cs st). Qed.

(** ecma_find_named_property gives the property of that name of the object, or none if
    there is none, wherever it is found (in the cache, by the hash map or in the list); it
    never fails, and the objects have the same properties afterwards. *)
Theorem ecma_find_named_property_correct refs w G o c l np k : rep_m refs (fun _ => map_is) w G [] -> G !! o = Some (c, l) -> key_of np = Some k ->
  exists r w', ecma_find_named_property o np w = PDONE _ r w'
    /\ match r with
       | Some q => exists p, prop_at l q = Some p /\ lookup_entry (Some k) (entries l) = Some (entry_of p)
       | None => lookup_entry (Some k) (entries l) = None
       end
    /\ exists G', rep_m refs (fun _ => map_is) w' G' [] /\ snd <$> G' = snd <$> G /\ log w' = log w.
Proof.
  intros Hrep Hg Hk. pose proof (find_spec refs w G [] o c l np k Hrep (List.Forall_nil _) Hg Hk) as H. unfold pruns in H. destruct (ecma_find_named_property o np w) as [r w' | |]; try easy.
  exists r, w'. split; [reflexivity |]. destruct H as [Hf (G' & Hrep' & [Hs Hlog _])]. split; [| now exists G']. destruct (rep_nodup _ _ _ _ _ Hrep o _ Hg) as [Hnd Hok].
  pose proof (found_lookup l k r Hok (cps_nodup _ o _ Hnd) Hf) as Hl. destruct r as [q |]; [| exact Hl]. destruct Hl as (p & Hp & _ & Hl). now exists p.
Qed.

(** The search in the hash map of an object and the walk over its list find the same
    property. *)
Theorem ecma_property_hashmap_find_correct refs w G o c l h np k : rep_m refs (fun _ => map_is) w G [] -> G !! o = Some (Some c, l) -> cells w !! c = Some (HASHMAP h) -> key_of np = Some k ->
  exists r steps, ecma_property_hashmap_find h np w = PDONE _ r w /\ find_in_list (S (size (cells w))) (next_of_map h) np 0 w = PDONE _ (r, steps) w
    /\ (r = None <-> lookup_entry (Some k) (entries l) = None).
Proof.
  intros Hrep Hg Hh Hk. destruct (hashmap_find_run refs w G [] o c l h np k Hrep Hg Hh Hk) as (r & Er & Hr). destruct (rep_nodup _ _ _ _ _ Hrep o _ Hg) as [Hnd Hok]. pose proof (cps_nodup _ o _ Hnd) as Hcps. cbn [snd] in Hok, Hcps.
  destruct (rep_list _ _ _ _ _ Hrep o _ Hg) as (ob & Ho & [Hl _]). cbn [fst snd] in Hl. destruct Hl as (_ & _ & h' & Hh' & Hl & _). rewrite Hh in Hh'. injection Hh' as <-.
  destruct (contents_room refs _ w G [] o _ Hrep Hg) as [_ Hlen]. cbn [snd] in Hlen.
  destruct (find_in_list_run w np k l Hk (S (size (cells w))) (next_of_map h) 0 Hl (proj1 Hok) Hcps ltac:(lia)) as ([r' steps] & Er' & Hr'). cbn [fst] in Hr'.
  rewrite (found_unique l k r r' Hok Hcps Hr Hr') in *. exists r', steps. split; [exact Er |]. split; [exact Er' |].
  pose proof (found_lookup l k r' Hok Hcps Hr') as H. destruct r' as [q |]; [destruct H as (p & _ & _ & ->); now split | now split].
Qed.

(** ecma_create_property puts a property that the object does not have in front of its
    list, in a free place or in a new pair, and gives where it is; the other objects are as
    they were, and the name gets a reference.  Only memory may be missing. *)
Theorem ecma_create_property_correct refs w G o c l p : rep_m refs (fun _ => map_is) w G [] -> G !! o = Some (c, l) -> prop_ok p -> (refs o = true \/ is_accessor p = false) ->
  lookup_entry (key p) (entries l) = None ->
  match ecma_create_property o (p_name p) (p_flags p) (p_value p) w with
  | PDONE _ q w' => exists G' c' l', rep_m refs (fun _ => map_is) w' G' [] /\ G' !! o = Some (c', l') /\ snd <$> G' = <[o := l']> (snd <$> G)
      /\ entries l' = entry_of p :: entries l /\ prop_at l' q = Some p /\ log w' = log w ++ name_refs (p_name p)
  | PFATAL _ => True
  | PFAULT _ => False
  end.
Proof.
  intros Hrep Hg Hp Hacc Hnone. assert (Ea : acc_of refs o p = []) by (unfold acc_of; destruct Hacc as [-> | ->]; [reflexivity | now destruct (refs o)]).
  assert (Hfresh : fresh refs o p w G [] l).
  { constructor; rewrite ?Ea; [exact Hrep | | constructor | constructor | constructor]. apply (absent l (p_name p)); [| exact Hnone]. destruct Hp as [[k ->] _]. discriminate. }
  pose proof (create_property_spec refs o p Hp w G [] c l Hfresh Hg) as H. unfold pruns in H. destruct (ecma_create_property _ _ _ _ w) as [q w' | |]; [| easy | easy].
  destruct H as (G' & c' & l' & Hrep' & Hg' & [Hc _ Hat] & Hs & Hlog & _). exists G', c', l'. split; [exact Hrep' |]. split; [exact Hg' |]. split; [exact Hs |].
  split; [unfold entries; now rewrite Hc |]. split; [rewrite Hat; now rewrite bool_decide_true | exact Hlog].
Qed.

(** ecma_delete_property takes the property out of the list of the object and releases
    it: its name, its value or the cell of its accessors, and the pair when it was the last
    in it.  It never fails; the cache and the hash map follow. *)
Theorem ecma_delete_property_correct refs w G o c l q p : rep_m refs (fun _ => map_is) w G [] -> G !! o = Some (c, l) -> prop_at l q = Some p -> (refs o = true -> is_accessor p = false) ->
  exists w' G' c' l' t, ecma_delete_property o q w = PDONE _ tt w' /\ rep_m refs (fun _ => map_is) w' G' [] /\ G' !! o = Some (c', l') /\ snd <$> G' = <[o := l']> (snd <$> G)
    /\ entries l' = remove_entry (key p) (entries l) /\ (tidy l -> tidy l') /\ log w' = log w ++ release_events t p.
Proof.
  intros Hrep Hg Hp Hrefs. pose proof (delete_property_spec refs w G [] o c l q p Hrep (List.Forall_nil _) Hg Hp Hrefs) as H. unfold pruns in H. destruct (ecma_delete_property o q w) as [[] w' | |]; [| easy | easy].
  destruct H as (G' & c' & l' & t & Hrep' & Hg' & [(A & B & E & E') _] & Ht & Hs & Hlog & _). exists w', G', c', l', t. split; [reflexivity |]. split; [exact Hrep' |]. split; [exact Hg' |]. split; [exact Hs |].
  split; [| now split]. destruct (rep_nodup _ _ _ _ _ Hrep o _ Hg) as [_ Hok]. destruct (others l A p B Hok E) as [HA HB]. unfold entries. rewrite E, E', !map_app. cbn [map]. now rewrite remove_mid.
Qed.
End Claims.

(** ** Concrete runs *)

#[local] Existing Instance demo_property_names.
#[local] Existing Instance demo_property_heap.

Definition demo_store : gmap Z (list entry) := <[1 := []]> (<[2 := []]> ∅).

(** Forty properties; the search for the first makes a hash map *)
Definition demo_creates : list (Z * request) :=
  map (fun n => (1, CREATE (ecma_get_ecma_string_from_uint32 n) 7 (16 * n))) (seqZ 0 40) ++ [(1, FIND (ecma_get_ecma_string_from_uint32 0))].
(** The two blocks are the same name *)
Definition demo_script : list (Z * request) :=
  demo_creates ++ [(1, CREATE 64 5 160); (1, FIND 96); (2, FIND 96); (1, CREATE_ACCESSOR (ecma_get_ecma_string_from_uint32 50) 5 6 3); (1, STORE (ecma_get_ecma_string_from_uint32 50) 4);
    (1, STORE 96 320); (1, SET WRITABLE 64 false); (1, FIND 64); (1, DELETE (ecma_get_ecma_string_from_uint32 50)); (1, FIND (ecma_get_ecma_string_from_uint32 50)); (1, DELETE 96); (1, FIND 64)].

Definition checked (c : Z * request) : bool :=
  match demo_names (request_name c.2) with Some _ => true | None => false end && ((c.1 =? 1) || (c.1 =? 2)) && negb (name_type (request_name c.2) =? ECMA_DIRECT_STRING_SPECIAL)
  && match c.2 with CREATE _ attributes _ | CREATE_ACCESSOR _ _ _ attributes => (0 <=? attributes) && (attributes <? 8) | _ => true end.

Lemma checked_ok cs : forallb checked cs = true -> Forall (request_ok demo_store) cs.
Proof.
  intros H. rewrite forallb_forall in H. apply Forall_forall. intros [o r] Hin. apply list_elem_of_In in Hin. specialize (H _ Hin). unfold checked in H. cbn [fst snd] in H.
  apply andb_prop in H as [H Ha]. apply andb_prop in H as [H Hs]. apply andb_prop in H as [Hn Ho]. apply negb_true_iff, Z.eqb_neq in Hs.
  split; [| split]; cbn [fst snd].
  - unfold is_name. cbn. destruct (demo_names (request_name r)) as [k |]; [now exists k | discriminate].
  - apply orb_true_iff in Ho as [E | E]; apply Z.eqb_eq in E as ->; exists []; reflexivity.
  - destruct r; try exact I; try exact Hs; apply andb_prop in Ha as [H1 H2]; apply Z.leb_le in H1; apply Z.ltb_lt in H2; [| split]; first [lia | exact Hs].
Qed.

Lemma demo_start_rep refs : rep_m refs (fun _ => map_is) demo_start (list_to_map [(1, (None, [])); (2, (None, []))]) [].
Proof. apply (new_world_rep refs [1; 2]); [exact (holding_start demo_memory demo_memory_ok) | repeat constructor]. Qed.

Lemma demo_start_refines : refines demo_start demo_store.
Proof. eexists. split; [exact (demo_start_rep _) |]. cbn [list_to_map foldr fst snd]. rewrite !fmap_insert, fmap_empty. reflexivity. Qed.

Lemma ecma_properties_refine_witness :
  match exec_all demo_script demo_start with
  | PDONE _ answers w' => answers = snd (run_spec demo_script demo_store) /\ refines w' (fst (run_spec demo_script demo_store))
  | PFATAL _ => Exists (fun c => creates c.2) demo_script
  | PFAULT _ => False
  end
  /\ match exec_all demo_script demo_start with PDONE _ answers _ => drop 41 answers | _ => [] end
      = [None; Some (37, Some 160); None; None; Some (3, None); Some (37, Some 160); Some (37, Some 320); Some (33, Some 320); Some (3, None); None; Some (33, Some 320); None].
Proof.
  split; [| vm_compute; reflexivity]. apply (ecma_properties_refine _ _ demo_script demo_start demo_store demo_start_refines). apply checked_ok. vm_compute. reflexivity.
Defined.

(** The world after the forty creations *)
Definition demo_world : pworld := match exec_all demo_creates demo_start with PDONE _ _ w => w | _ => demo_start end.

Lemma demo_list : exists G c l, rep_m (fun _ => false) (fun _ => map_is) demo_world G [] /\ G !! 1 = Some (c, l) /\ entries l = default [] ((run_spec demo_creates demo_store).1 !! 1).
Proof.
  pose proof (exec_all_run demo_creates demo_start demo_store demo_start_refines (checked_ok demo_creates ltac:(vm_compute; reflexivity))) as H.
  assert (Hdone : match exec_all demo_creates demo_start with PDONE _ _ _ => true | _ => false end = true) by (vm_compute; reflexivity).
  unfold demo_world, pruns in *. destruct (exec_all demo_creates demo_start) as [answers w | |]; [| discriminate | discriminate]. destruct (run_spec demo_creates demo_store) as [st answers'] eqn:E.
  destruct H as [_ (G & Hrep & Est)]. assert (Hsome : match st !! 1 with Some _ => true | None => false end = true) by (change st with (st, answers').1; rewrite <- E; vm_compute; reflexivity).
  rewrite Est, lookup_fmap in *. destruct (G !! 1) as [[c l] |] eqn:Hg; [| discriminate]. exists G, c, l. split; [exact Hrep |]. split; [exact Hg |]. cbn [fst]. rewrite lookup_fmap, Hg. reflexivity.
Qed.

Lemma ecma_find_named_property_witness : exists r w', ecma_find_named_property 1 (ecma_get_ecma_string_from_uint32 3) demo_world = PDONE _ r w' /\ r <> None.
Proof.
  destruct demo_list as (G & c & l & Hrep & Hg & El).
  destruct (ecma_find_named_property_correct demo_property_names demo_property_heap (fun _ => false) demo_world G 1 c l (ecma_get_ecma_string_from_uint32 3) [51] Hrep Hg ltac:(vm_compute; reflexivity)) as (r & w' & E & Hr & _).
  assert (Hsome : match lookup_entry (Some ([51] : name_key (PropertyNames := demo_property_names))) (default [] ((run_spec demo_creates demo_store).1 !! 1)) with Some _ => true | None => false end = true) by (vm_compute; reflexivity).
  exists r, w'. split; [exact E |]. intros ->. rewrite <- El, Hr in Hsome. discriminate.
Defined.

Definition demo_head : Z := match objects demo_world !! 1 with Some o => property_list_cp o | None => 0 end.
Definition demo_map : ecma_property_hashmap_t := match cells demo_world !! demo_head with Some (HASHMAP h) => h | _ => empty_table 0 0 0 end.

Lemma demo_head_map : cells demo_world !! demo_head = Some (HASHMAP demo_map).
Proof.
  assert (H : match cells demo_world !! demo_head with Some (HASHMAP _) => true | _ => false end = true) by (vm_compute; reflexivity).
  unfold demo_map. destruct (cells demo_world !! demo_head) as [[| h |] |]; (discriminate || reflexivity).
Qed.

Lemma demo_list_map G c l : rep_m (fun _ => false) (fun _ => map_is) demo_world G [] -> G !! 1 = Some (c, l) -> c = Some demo_head.
Proof.
  intros Hrep Hg. destruct (rep_list _ _ _ _ _ Hrep 1 _ Hg) as (ob & Ho & [Hl _]). cbn [fst snd] in Hl. assert (Eh : property_list_cp ob = demo_head) by (unfold demo_head; now rewrite Ho). rewrite Eh in Hl.
  destruct c as [c |]; [now destruct Hl as (-> & _) |]. destruct l as [| [p a] l]; cbn [linked] in Hl.
  - assert (H : (demo_head =? JMEM_CP_NULL) = false) by (vm_compute; reflexivity). now rewrite Hl in H.
  - destruct Hl as (<- & _ & x & Hx & _). pose proof demo_head_map as E. rewrite Hx in E. clear - E. revert E. generalize demo_map. discriminate.
Qed.

Lemma ecma_property_hashmap_find_witness : exists r steps, ecma_property_hashmap_find demo_map (ecma_get_ecma_string_from_uint32 3) demo_world = PDONE _ r demo_world
  /\ find_in_list (S (size (cells demo_world))) (next_of_map demo_map) (ecma_get_ecma_string_from_uint32 3) 0 demo_world = PDONE _ (r, steps) demo_world.
Proof.
  destruct demo_list as (G & c & l & Hrep & Hg & _). pose proof (demo_list_map G c l Hrep Hg) as ->.
  destruct (ecma_property_hashmap_find_correct demo_property_names demo_property_heap (fun _ => false) demo_world G 1 demo_head l demo_map (ecma_get_ecma_string_from_uint32 3) [51] Hrep Hg demo_head_map ltac:(vm_compute; reflexivity)) as (r & steps & E1 & E2 & _).
  exists r, steps. split; [exact E1 | exact E2].
Defined.

(** A property of the second object *)
Lemma ecma_create_property_witness : match ecma_create_property 2 64 39 160 demo_start with PDONE _ q w' => log w' = [REF_NAME 64] | _ => False end.
Proof.
  assert (Hp : prop_ok (mk_prop 64 39 160)) by (split; [now exists [97; 98] | split; [cbn; lia | split; [reflexivity | intros H; discriminate]]]).
  pose proof (ecma_create_property_correct demo_property_names demo_property_heap (fun _ => false) demo_start _ 2 None [] (mk_prop 64 39 160) (demo_start_rep _) eq_refl Hp (or_intror eq_refl) eq_refl) as H. cbn [p_name p_flags p_value] in H.
  assert (Hdone : match ecma_create_property 2 64 39 160 demo_start with PDONE _ _ _ => true | _ => false end = true) by (vm_compute; reflexivity).
  destruct (ecma_create_property 2 64 39 160 demo_start) as [q w' | |]; [| discriminate | discriminate]. now destruct H as (? & ? & ? & _ & _ & _ & _ & _ & ->).
Defined.

(** The newest property of the first object *)
Lemma ecma_delete_property_witness : exists q w' t, ecma_delete_property 1 q demo_world = PDONE _ tt w' /\ log w' = log demo_world ++ release_events t (mk_prop (ecma_get_ecma_string_from_uint32 39) 39 624).
Proof.
  destruct demo_list as (G & c & l & Hrep & Hg & El). destruct (rep_nodup _ _ _ _ _ Hrep 1 _ Hg) as [Hnd Hok]. pose proof (cps_nodup _ 1 _ Hnd) as Hcps. cbn [snd] in Hok, Hcps.
  assert (Hin : exists p, In p (contents l) /\ entry_of p = mk_property (Some [51; 57]) 39 (Some 624)).
  { assert (Hfirst : match default [] ((run_spec demo_creates demo_store).1 !! 1) with e :: _ => bool_decide (e_name e = Some ([51; 57] : name_key (PropertyNames := demo_property_names))) && (e_flags e =? 39) && bool_decide (e_value e = Some 624) | [] => false end = true) by (vm_compute; reflexivity).
    rewrite <- El in Hfirst. unfold entries in Hfirst. destruct (contents l) as [| p ps]; [discriminate |]. exists p. split; [now left |]. cbn [map] in Hfirst. destruct (entry_of p) as [n flags v]. cbn [e_name e_flags e_value] in Hfirst.
    apply andb_prop in Hfirst as [Hfirst H3]. apply andb_prop in Hfirst as [H1 H2]. apply bool_decide_eq_true in H1, H3. apply Z.eqb_eq in H2. now subst. }
  destruct Hin as (p & Hin & Ep). destruct (in_prop l p Hcps Hin) as [q Hq].
  assert (p = mk_prop (ecma_get_ecma_string_from_uint32 39) 39 624) as ->.
  { destruct p as [np flags value]. unfold entry_of, is_accessor in Ep. cbn [p_flags p_value] in Ep. injection Ep as Ek -> Ev. cbn in Ev. injection Ev as ->. f_equal. unfold key in Ek. cbn [p_name] in Ek.
    apply (direct_unique (PropertyNames := demo_property_names) (ecma_get_ecma_string_from_uint32 39) np ([51; 57] : name_key (PropertyNames := demo_property_names))); [vm_compute; reflexivity | exact Ek | vm_compute; reflexivity]. }
  destruct (ecma_delete_property_correct demo_property_names demo_property_heap (fun _ => false) demo_world G 1 c l q _ Hrep Hg Hq ltac:(discriminate)) as (w' & G' & c' & l' & t & E & _ & _ & _ & _ & _ & Hlog).
  exists q, w', t. split; [exact E | exact Hlog].
Defined.
