(* ===== verification/GcHeap.v ===== *)
(** * The objects that the garbage collector sees: src/jjs-core/ecma/base

    An object is a word with its type, flags and reference count, a link to the next object
    of the collector's chain, its prototype or outer environment, its properties, and the
    fields of its type.  Blocks that belong to one object (its property pairs, collections,
    the registers of a suspended function) are part of its record; compiled code and scripts,
    which objects share, are in tables.  Objects are named by their compressed pointers. *)
From Stdlib Require Import ZArith Lia Bool List.
From stdpp Require Import base gmap list.
From S2P Require Import Prelude JmemPointers Values PropNames.
Import ListNotations.
#[local] Open Scope Z_scope.

(** ** The descriptor of an object *)

Definition ECMA_OBJECT_TYPE_MASK : Z := 15.
Definition ECMA_OBJECT_REF_SHIFT : Z := 5.
Definition ECMA_OBJECT_REF_ONE : Z := Z.shiftl 1 ECMA_OBJECT_REF_SHIFT.
Definition ECMA_OBJECT_REF_MASK : Z := u32 (Z.shiftl (B32 - 1) ECMA_OBJECT_REF_SHIFT).
Definition ECMA_OBJECT_NON_VISITED : Z := ECMA_OBJECT_REF_MASK.
Definition ECMA_OBJECT_MAX_REF : Z := ECMA_OBJECT_NON_VISITED - ECMA_OBJECT_REF_ONE.

(** The compressed pointer in an object value, and in a tagged pointer *)
Definition ecma_object_of_value (value : Z) : Z := Z.shiftr value ECMA_VALUE_SHIFT.
Definition ecma_object_of_tag (value : Z) : Z := Z.shiftr (Z.land value (Z.lnot JMEM_TAG_MASK)) JMEM_TAG_SHIFT.
Definition ecma_value_of_object (object_cp : Z) : Z := Z.lor (u32 (Z.shiftl object_cp ECMA_VALUE_SHIFT)) ECMA_TYPE_OBJECT.

(** ** Properties *)

Definition ECMA_PROPERTY_IS_INTERNAL (property : Z) : bool := ECMA_PROPERTY_INTERNAL <=? property.
Definition ECMA_PROPERTY_FLAG_SINGLE_EXTERNAL : Z := 4.

(** The references that the embedder keeps behind a native pointer, and its callback *)
Record ecma_native_pointer_t := mk_native { native_p : Z; has_info : bool; free_cb : option Z; references : list Z }.

(** The value of a property by its type: of internal properties, the block it points to *)
Inductive prop_value :=
| DATA (value : Z)
| GETTER_SETTER (getter_cp setter_cp : Z)
| REFERENCE (reference : Z)
| UNUSED
| ENVIRONMENT_RECORD (this_binding function_object : Z)
| CLASS_FIELD_COMPUTED (items : list Z)
| CLASS_PRIVATE_ELEMENTS (items : list Z)
| WEAK_REFS (buffer : list Z)
| NATIVE_POINTER (items : list ecma_native_pointer_t)
| NATIVE_POINTER_WITH_REFERENCES (items : list ecma_native_pointer_t).

Record gc_slot := mk_slot { property : Z; name_cp : Z; data : prop_value }.
Abbreviation gc_pair := (gc_slot * gc_slot)%type.

(** ** The fields of each type *)

Record ecma_built_in_props_t := mk_props { id : Z; routine_id : Z; length_and_bitset_size : Z; realm_value : Z }.

Record ecma_global_object_t := mk_global {
  this_binding : Z;
  global_env_cp : Z;
  global_scope_cp : Z;
  builtin_objects : list Z;
  commonjs_cache : Z;
  esm_cache : Z;
  vmod_cache : Z
}.

(** The native handlers: the routine of a function object with ECMA_BUILTIN_ID_HANDLER *)
Inductive ecma_native_handler :=
| PROMISE_RESOLVE (promise : Z)
| PROMISE_REJECT (promise : Z)
| PROMISE_THEN_FINALLY (constructor on_finally : Z)
| PROMISE_CATCH_FINALLY (constructor on_finally : Z)
| PROMISE_CAPABILITY_EXECUTOR (capability : Z)
| PROMISE_ALL_HELPER (capability values remaining_elements : Z)
| PROXY_REVOKE (proxy : Z)
| VALUE_THUNK (value : Z)
| VALUE_THROWER (value : Z)
| ASYNC_FROM_SYNC_ITERATOR_UNWRAP.

Record ecma_async_generator_task_t := mk_task { promise : Z; operation_value : Z }.

(** The values on the stack of the frame, from the first register to stack_top_p *)
Record vm_executable_object_t := mk_executable {
  executable_obj_flags : Z;
  tasks : list ecma_async_generator_task_t;
  lex_env_p : Z;
  function_object_p : Z;
  frame_this_binding : Z;
  bytecode_header_cp : Z;
  context_depth : Z;
  stack : list Z;
  iterator : Z
}.

Record ecma_module_t := mk_module {
  scope_p : option Z;
  namespace_object_p : option Z;
  module_flags : Z;
  compiled_code_p : option Z;
  imports : list Z
}.

Inductive container_id := MAP_UL | SET_UL | WEAKMAP_UL | WEAKSET_UL.

(** The class types; an entry of a container is its key and value, and that of a set is the
    key with no value *)
Inductive class_object :=
| CLASS_STRING (value : Z) | CLASS_NUMBER (value : Z) | CLASS_SYMBOL (value : Z) | CLASS_BIGINT (value : Z)
| CLASS_ARGUMENTS (callee : Z) (mapped : option (Z * option Z)) (formal_params_number : Z) (arguments : list Z)
| CLASS_TYPEDARRAY (typedarray_flags arraybuffer : Z)
| CLASS_MODULE_NAMESPACE (value : Z)
| CLASS_GENERATOR (e : vm_executable_object_t) | CLASS_ASYNC_GENERATOR (e : vm_executable_object_t)
| CLASS_ARRAY_ITERATOR (iterated_value : Z) | CLASS_SET_ITERATOR (iterated_value : Z) | CLASS_MAP_ITERATOR (iterated_value : Z)
| CLASS_REGEXP_STRING_ITERATOR (iterating_regexp iterated_string : Z)
| CLASS_MODULE (m : ecma_module_t)
| CLASS_PROMISE (result : Z) (reactions : option (list Z))
| CLASS_PROMISE_CAPABILITY (promise resolve reject : Z)
| CLASS_ASYNC_FROM_SYNC_ITERATOR (sync_iterator sync_next_method : Z)
| CLASS_DATAVIEW (buffer_p : Z)
| CLASS_CONTAINER (id : container_id) (size : Z) (entries : list (Z * Z))
| CLASS_SCRIPT (compiled_code_cp : Z)
| CLASS_DATE
| CLASS_REGEXP (bytecode : Z)
| CLASS_STRING_ITERATOR (iterated_value : Z)
| CLASS_ARRAY_BUFFER (array_buffer_flags length : Z) | CLASS_SHARED_ARRAY_BUFFER (array_buffer_flags length : Z)
| CLASS_WEAKREF (target : Z)
| CLASS_OTHER. (** boolean, error and internal objects, and classes that are not initialized yet *)

Definition ECMA_FAST_ARRAY_FLAG : Z := 8.
Definition ECMA_ARRAY_TEMPLATE_LITERAL : Z := 16.

(** [values]: the buffer of a fast access mode array, if it has one *)
Record array_object := mk_array { length_prop_and_hole_count : Z; array_length : Z; array_values : option (list Z) }.
Definition ecma_op_array_is_fast_array (a : array_object) : bool := negb (Z.land (length_prop_and_hole_count a) ECMA_FAST_ARRAY_FLAG =? 0).

(** The types of objects and lexical environments, the four low bits of the descriptor; an
    environment of type ECMA_LEXICAL_ENVIRONMENT_CLASS has data when the fifth bit is set. *)
Inductive object_body :=
| LEX_DECLARATIVE
| LEX_CLASS_DATA (type object_p : Z)
| LEX_CLASS (bound_object_cp : Z)
| LEX_THIS_OBJECT_BOUND (bound_object_cp : Z)
| GENERAL
| BUILT_IN_GENERAL (b : ecma_built_in_props_t) (g : option ecma_global_object_t)
| CLASS (c : class_object)
| BUILT_IN_CLASS (b : ecma_built_in_props_t) (c : class_object)
| ARRAY (a : array_object)
| BUILT_IN_ARRAY (b : ecma_built_in_props_t) (a : array_object)
| PROXY (target handler : Z)
| FUNCTION (scope_cp : Z) (static : bool) (bytecode_cp : Z) (arrow : Z * Z)
| BUILT_IN_FUNCTION (b : ecma_built_in_props_t) (h : option ecma_native_handler)
| BOUND_FUNCTION (target_function args_len_or_this target_length : Z) (args : list Z)
| CONSTRUCTOR_FUNCTION (script_value : Z)
| NATIVE_FUNCTION (native_realm_value : Z).

Definition ECMA_LEX_ENV_CLASS_TYPE_MODULE : Z := 0.

(** [u2_cp]: the prototype or the outer lexical environment; [hashmap]: the property list
    starts with a hash map *)
Record gc_object := mk_gc_object {
  type_flags_refs : Z;
  gc_next_cp : Z;
  u2_cp : Z;
  body : object_body;
  hashmap : bool;
  properties : list gc_pair
}.

Definition ecma_gc_is_object_visited (ob : gc_object) : bool := type_flags_refs ob <? ECMA_OBJECT_NON_VISITED.

Definition class_of (ob : gc_object) : option class_object := match body ob with CLASS c | BUILT_IN_CLASS _ c => Some c | _ => None end.

(** ** Compiled code *)

Definition CBC_CODE_FLAGS_STATIC_FUNCTION : Z := 256.
Definition CBC_FUNCTION_TYPE_SHIFT : Z := 12.
Definition CBC_FUNCTION_ARROW : Z := 9.
Definition CBC_FUNCTION_IS_ARROW (flags : Z) : bool := Z.shiftl CBC_FUNCTION_ARROW CBC_FUNCTION_TYPE_SHIFT <=? flags.

Record ecma_compiled_code_t := mk_code { status_flags : Z; script_value : Z; register_end : Z; stack_limit : Z }.

Definition CBC_SCRIPT_USER_VALUE_IS_OBJECT : Z := 2.
Definition CBC_SCRIPT_HAS_IMPORT_META : Z := 8.

Record cbc_script_t := mk_script { refs_and_type : Z; user_value : Z; import_meta : Z; realm_p : Z }.

(** ** State *)

(** The structures that objects are allocated as *)
Inductive c_struct :=
| sizeof_ecma_object_t | sizeof_ecma_extended_object_t | sizeof_ecma_extended_built_in_object_t | sizeof_ecma_lexical_environment_class_t | sizeof_ecma_global_object_t
| sizeof_ecma_unmapped_arguments_t | sizeof_ecma_mapped_arguments_t | sizeof_ecma_extended_typedarray_object_t | sizeof_ecma_date_object_t
| sizeof_ecma_regexp_string_iterator_t | sizeof_ecma_arraybuffer_pointer_t | sizeof_ecma_dataview_object_t | sizeof_vm_executable_object_t | sizeof_ecma_promise_object_t
| sizeof_ecma_promise_capabality_t | sizeof_ecma_async_from_sync_iterator_object_t | sizeof_ecma_module_t | sizeof_ecma_proxy_object_t | sizeof_ecma_arrow_function_t
| sizeof_ecma_static_function_t | sizeof_ecma_promise_resolver_t | sizeof_ecma_promise_finally_function_t | sizeof_ecma_promise_capability_executor_t
| sizeof_ecma_promise_all_executor_t | sizeof_ecma_revocable_proxy_object_t | sizeof_ecma_promise_value_thunk_t | sizeof_ecma_bound_function_t | sizeof_ecma_native_function_t.

(** Calls to other components, and blocks that are given back *)
Inductive gc_event :=
| FREE_VALUE (value : Z) (** ecma_free_value *)
| FREE_VALUE_IF_NOT_OBJECT (value : Z)
| DEREF_STRING (string_value : Z) (** ecma_deref_ecma_string *)
| BYTECODE_DEREF (code_cp : Z)
| SCRIPT_DEREF (script_value : Z)
| LCACHE_INVALIDATE (object_cp name_cp : Z) (second : bool)
| HASHMAP_FREE (object_cp : Z)
| FREE_CB (free_cb native_p : Z) (** a callback of the embedder *)
| FREE_PROPERTY_BLOCK (d : prop_value) (** the block of an accessor or an internal property *)
| FREE_PAIR (object_cp : Z)
| FREE_ARRAY_VALUES (length : Z)
| FREE_TASK (** ecma_async_generator_task_t *)
| FREE_FOR_IN (collection index : Z) (** the keys of a for-in context that are left, and the collection *)
| RELEASE_BUFFER (object_cp : Z) (** ecma_arraybuffer_release_buffer *)
| RELEASE_MODULE (object_cp : Z) (** ecma_module_release_module *)
| COLLECTION_DESTROY (object_cp : Z)
| DEALLOC (object_cp : Z) (s : c_struct) (extra : Z)
| RE_CACHE_GC.

Record gworld := mk_gworld {
  objects : gmap Z gc_object;
  codes : gmap Z ecma_compiled_code_t;
  scripts : gmap Z cbc_script_t;
  ecma_gc_objects_cp : Z;
  gc_mark_limit : Z;
  ecma_gc_objects_number : Z;
  ecma_gc_new_objects : Z;
  log : list gc_event
}.

Definition set_objects (o : gmap Z gc_object) (w : gworld) : gworld :=
  mk_gworld o (codes w) (scripts w) (ecma_gc_objects_cp w) (gc_mark_limit w) (ecma_gc_objects_number w) (ecma_gc_new_objects w) (log w).
Definition put (object_cp : Z) (ob : gc_object) (w : gworld) : gworld := set_objects (<[object_cp := ob]> (objects w)) w.
Definition emit (e : list gc_event) (w : gworld) : gworld :=
  mk_gworld (objects w) (codes w) (scripts w) (ecma_gc_objects_cp w) (gc_mark_limit w) (ecma_gc_objects_number w) (ecma_gc_new_objects w) (log w ++ e).
Definition set_chain (cp number new_objects : Z) (w : gworld) : gworld :=
  mk_gworld (objects w) (codes w) (scripts w) cp (gc_mark_limit w) number new_objects (log w).

Definition set_refs (f : Z) (ob : gc_object) : gc_object := mk_gc_object f (gc_next_cp ob) (u2_cp ob) (body ob) (hashmap ob) (properties ob).
Definition set_next (cp : Z) (ob : gc_object) : gc_object := mk_gc_object (type_flags_refs ob) cp (u2_cp ob) (body ob) (hashmap ob) (properties ob).
Definition set_body (b : object_body) (ob : gc_object) : gc_object := mk_gc_object (type_flags_refs ob) (gc_next_cp ob) (u2_cp ob) b (hashmap ob) (properties ob).
Definition set_properties (ps : list gc_pair) (ob : gc_object) : gc_object := mk_gc_object (type_flags_refs ob) (gc_next_cp ob) (u2_cp ob) (body ob) (hashmap ob) ps.

(** ** References of the program *)

(** The object is new: its descriptor has no reference yet *)
Definition ecma_init_gc_info (object_cp : Z) (w : gworld) : option gworld :=
  match objects w !! object_cp with
  | None => None
  | Some ob =>
      let ob := set_next (ecma_gc_objects_cp w) (set_refs (Z.lor (type_flags_refs ob) ECMA_OBJECT_REF_ONE) ob) in
      Some (set_chain object_cp (u32 (ecma_gc_objects_number w + 1)) (u32 (ecma_gc_new_objects w + 1)) (put object_cp ob w))
  end.

(** [None]: jjs_fatal, or no object *)
Definition ecma_ref_object (object_cp : Z) (w : gworld) : option gworld :=
  match objects w !! object_cp with
  | None => None
  | Some ob =>
      if type_flags_refs ob <? ECMA_OBJECT_MAX_REF then Some (put object_cp (set_refs (u32 (type_flags_refs ob + ECMA_OBJECT_REF_ONE)) ob) w) else None
  end.

Definition ecma_deref_object (object_cp : Z) (w : gworld) : option gworld :=
  match objects w !! object_cp with
  | None => None
  | Some ob => Some (put object_cp (set_refs (u32 (type_flags_refs ob - ECMA_OBJECT_REF_ONE)) ob) w)
  end.
