(* ===== verification/GcMark.v ===== *)
(** * What marking an object visits: src/jjs-core/ecma/base/ecma-gc.c

    Marking reads the heap and visits other objects; it changes nothing else.  Each function
    here gives the visits that the function of its name makes, in order.  A visit that depends
    on whether some object is visited already carries that object: the test is made when the
    visit is due.  [None] stands for following what is not there. *)
From Stdlib Require Import ZArith Lia Bool List.
From stdpp Require Import base gmap list.
From S2P Require Import Prelude JmemPointers Values PropNames GcHeap.
Import ListNotations.
#[local] Open Scope Z_scope.
#[local] Open Scope partial_scope.

Definition ECMA_VALUE_UNINITIALIZED : Z := ECMA_MAKE_VALUE 6.

Inductive visit :=
| VISIT (o : Z)
| VISIT_IF_VISITED (k o : Z).

Definition visit_value (value : Z) : list visit := [VISIT (ecma_object_of_value value)].
Definition visit_if_object (value : Z) : list visit := if ecma_is_value_object value then visit_value value else [].
Definition visit_if_set (cp : Z) : list visit := if cp =? JMEM_CP_NULL then [] else [VISIT cp].
Definition visit_values (values : list Z) : list visit := flat_map visit_if_object values.
Definition visit_option (p : option Z) : list visit := match p with Some o => [VISIT o] | None => [] end.

(** The visits of the elements of a list, one after the other *)
Fixpoint visit_all {A} (f : A -> option (list visit)) (l : list A) : option (list visit) :=
  match l with
  | [] => Some []
  | x :: l => let? v := f x in let? vs := visit_all f l in Some (v ++ vs)
  end.

Definition ecma_gc_mark_global_object (g : ecma_global_object_t) : list visit :=
  [VISIT (global_env_cp g)] ++ visit_value (this_binding g)
  ++ (if negb (global_scope_cp g =? global_env_cp g) then [VISIT (global_scope_cp g)] else [])
  ++ flat_map visit_if_set (builtin_objects g)
  ++ visit_if_object (commonjs_cache g) ++ visit_if_object (esm_cache g) ++ visit_if_object (vmod_cache g).

Definition ecma_gc_mark_arguments_object (callee : Z) (mapped : option (Z * option Z)) (arguments : list Z) : list visit :=
  visit_value callee ++ match mapped with Some (lex_env, _) => [VISIT lex_env] | None => [] end ++ visit_values arguments.

(** ** Weak references *)

(** ecma_op_internal_buffer_find, for a key that is an object: the same value is the same
    word then *)
Definition ecma_op_internal_buffer_find (entries : list (Z * Z)) (key_arg : Z) : option (Z * Z) :=
  List.find (fun e => e.1 =? key_arg) entries.

(** The weak map of a class object, if it is one *)
Definition weakmap_entries (ob : gc_object) : option (list (Z * Z)) :=
  match class_of ob with Some (CLASS_CONTAINER WEAKMAP_UL _ entries) => Some entries | _ => None end.

Section Marks.
Variable w : gworld.

(** One of the weak references of the key: the holder is a class object *)
Definition mark_weak_ref (object_cp reference_value : Z) : option (list visit) :=
  if ecma_is_value_empty reference_value then Some []
  else
    let reference_object_cp := ecma_object_of_value reference_value in
    let? ob := objects w !! reference_object_cp in
    match weakmap_entries ob with
    | None => Some []
    | Some entries =>
        let? e := ecma_op_internal_buffer_find entries (ecma_value_of_object object_cp) in
        Some (if ecma_is_value_object e.2 then [VISIT_IF_VISITED reference_object_cp (ecma_object_of_value e.2)] else [])
    end.

(** ** Properties *)

Fixpoint mark_private_elements (items : list Z) : list visit :=
  match items with
  | _ :: _ :: value :: items => (if negb (ecma_is_value_undefined value) then visit_value value else []) ++ mark_private_elements items
  | _ => []
  end.

(** The loop reads the first reference before it looks at their number *)
Definition mark_native_pointer (item : ecma_native_pointer_t) : option (list visit) :=
  if has_info item then match references item with [] => None | _ => Some (visit_values (references item)) end else None.

Definition mark_internal (object_cp : Z) (s : gc_slot) : option (list visit) :=
  match data s with
  | ENVIRONMENT_RECORD this_binding function_object =>
      Some ((if negb (this_binding =? ECMA_VALUE_UNINITIALIZED) then visit_value this_binding else []) ++ visit_value function_object)
  | CLASS_PRIVATE_ELEMENTS items => Some (mark_private_elements items)
  | WEAK_REFS buffer => visit_all (mark_weak_ref object_cp) buffer
  | NATIVE_POINTER_WITH_REFERENCES items =>
      if flag_set (property s) ECMA_PROPERTY_FLAG_SINGLE_EXTERNAL then match items with item :: _ => mark_native_pointer item | [] => None end
      else visit_all mark_native_pointer items
  | _ => Some []
  end.

Definition mark_slot (object_cp : Z) (mark_references : bool) (s : gc_slot) : option (list visit) :=
  if ECMA_PROPERTY_IS_RAW (property s) then
    if flag_set (property s) ECMA_PROPERTY_FLAG_DATA then match data s with DATA value => Some (visit_if_object value) | _ => None end
    else if mark_references then Some []
    else match data s with GETTER_SETTER getter_cp setter_cp => Some (visit_if_set getter_cp ++ visit_if_set setter_cp) | _ => None end
  else if negb (ECMA_PROPERTY_IS_INTERNAL (property s)) then Some []
  else mark_internal object_cp s.

Definition ecma_gc_mark_properties (object_cp : Z) (mark_references : bool) (properties : list gc_pair) : option (list visit) :=
  visit_all (fun p => let? v1 := mark_slot object_cp mark_references p.1 in let? v2 := mark_slot object_cp mark_references p.2 in Some (v1 ++ v2)) properties.

(** ** The fields of objects *)

Definition ecma_gc_mark_compiled_code (script_cp : Z) : option (list visit) :=
  let? s := scripts w !! script_cp in
  Some ((if flag_set (refs_and_type s) CBC_SCRIPT_USER_VALUE_IS_OBJECT then visit_value (user_value s) else [])
    ++ (if flag_set (refs_and_type s) CBC_SCRIPT_HAS_IMPORT_META then visit_value (import_meta s) else [])
    ++ [VISIT (realm_p s)]).

Definition mark_code (code_cp : Z) : option (list visit) := let? c := codes w !! code_cp in ecma_gc_mark_compiled_code (script_value c).

Definition ecma_gc_mark_bound_function_object (target_function args_len_or_this : Z) (args : list Z) : option (list visit) :=
  let target := VISIT (ecma_object_of_tag target_function) in
  if negb (ecma_is_value_integer_number args_len_or_this) then Some (target :: visit_if_object args_len_or_this)
  else
    let args_length := Z.to_nat (ecma_get_integer_from_value args_len_or_this) in
    if (args_length <=? length args)%nat then Some (target :: visit_values (firstn args_length args)) else None.

(** The reactions of a promise: a capability, whose tag has the handlers that follow it *)
Fixpoint mark_reactions (buffer : list Z) : option (list visit) :=
  match buffer with
  | [] => Some []
  | value :: buffer =>
      let first := flag_set value 1 in
      let second := flag_set value 2 in
      let? vs :=
        (if first && second then match buffer with a :: b :: buffer => let? vs := mark_reactions buffer in Some (visit_value a ++ visit_value b ++ vs) | _ => None end
         else if first || second then match buffer with a :: buffer => let? vs := mark_reactions buffer in Some (visit_value a ++ vs) | _ => None end
         else mark_reactions buffer) in
      Some (VISIT (ecma_object_of_tag value) :: vs)
  end.

Definition ecma_gc_mark_promise_object (result : Z) (reactions : option (list Z)) : option (list visit) :=
  let? vs := match reactions with Some buffer => mark_reactions buffer | None => Some [] end in
  Some (visit_if_object result ++ vs).

Definition ecma_gc_mark_map_object (entries : list (Z * Z)) : list visit :=
  flat_map (fun e => if ecma_is_value_empty e.1 then [] else visit_if_object e.1 ++ visit_if_object e.2) entries.

Definition ecma_gc_mark_weakmap_object (entries : list (Z * Z)) : list visit :=
  flat_map (fun e => if ecma_is_value_empty e.1 then [] else
    if ecma_is_value_object e.2 then [VISIT_IF_VISITED (ecma_object_of_value e.1) (ecma_object_of_value e.2)] else []) entries.

Definition ecma_gc_mark_set_object (entries : list (Z * Z)) : list visit :=
  flat_map (fun e => if ecma_is_value_empty e.1 then [] else visit_if_object e.1) entries.

(** ** Suspended functions *)

Definition ECMA_EXECUTABLE_OBJECT_COMPLETED : Z := 1.
Definition ECMA_EXECUTABLE_OBJECT_RUNNING : Z := 2.
Definition ECMA_EXECUTABLE_OBJECT_DO_AWAIT_OR_YIELD : Z := 4.
Definition ECMA_ASYNC_GENERATOR_CALLED : Z := 8.

(** The types of contexts, in the order of vm_stack_context_type_t *)
Definition VM_CONTEXT_FINALLY_JUMP : Z := 0.
Definition VM_CONTEXT_FINALLY_THROW : Z := 1.
Definition VM_CONTEXT_FINALLY_RETURN : Z := 2.
Definition VM_CONTEXT_WITH : Z := 6.
Definition VM_CONTEXT_FOR_IN : Z := 7.
Definition VM_CONTEXT_ITERATOR : Z := 10.
Definition VM_GET_CONTEXT_TYPE (value : Z) : Z := Z.land value 31.
Definition VM_GET_CONTEXT_END (value : Z) : Z := Z.shiftr value 7.
Definition VM_CONTEXT_IS_VARIABLE_LENGTH (context_type : Z) : bool := VM_CONTEXT_ITERATOR <=? context_type.
Definition VM_CONTEXT_OFFSET_SHIFT : Z := 4.

Definition vm_get_context_value_offsets (context_type : Z) : Z :=
  if (context_type =? VM_CONTEXT_FINALLY_THROW) || (context_type =? VM_CONTEXT_FINALLY_RETURN) then Z.lor (Z.shiftl 2 VM_CONTEXT_OFFSET_SHIFT) 2
  else if context_type =? VM_CONTEXT_FINALLY_JUMP then 2
  else if context_type <=? VM_CONTEXT_WITH then 1
  else if context_type =? VM_CONTEXT_FOR_IN then Z.lor (Z.shiftl 4 VM_CONTEXT_OFFSET_SHIFT) 4
  else Z.lor (Z.lor (Z.shiftl 4 (VM_CONTEXT_OFFSET_SHIFT * 3)) (Z.shiftl 4 (VM_CONTEXT_OFFSET_SHIFT * 2))) (Z.lor (Z.shiftl 3 VM_CONTEXT_OFFSET_SHIFT) 2).

(** The offsets of the values of a context, and its size *)
Fixpoint context_offsets (fuel : nat) (offsets : Z) : list Z * Z :=
  match fuel with
  | O => ([], offsets)
  | S fuel =>
      if Z.shiftl 1 VM_CONTEXT_OFFSET_SHIFT <=? offsets
      then let '(l, size) := context_offsets fuel (Z.shiftr offsets VM_CONTEXT_OFFSET_SHIFT) in (Z.land offsets 15 :: l, size)
      else ([], offsets)
  end.

(** Contexts from the top, whose topmost item describes the context.  The items of a
    context of variable length are all taken for objects. *)
Fixpoint mark_contexts (fuel : nat) (context : list Z) : option (list visit) :=
  match context with
  | [] => Some []
  | context_word :: items =>
      match fuel with
      | O => None
      | S fuel =>
          if VM_CONTEXT_IS_VARIABLE_LENGTH (VM_GET_CONTEXT_TYPE context_word) then
            let n := Z.to_nat (Z.max 1 (VM_GET_CONTEXT_END context_word - 1)) in
            if (n <=? length items)%nat then let? vs := mark_contexts fuel (skipn n items) in Some (flat_map visit_value (firstn n items) ++ vs) else None
          else
            let '(offsets, size) := context_offsets 4 (vm_get_context_value_offsets (VM_GET_CONTEXT_TYPE context_word)) in
            let? here := visit_all (fun offset => let? value := context !! Z.to_nat (offset - 1) in Some (visit_if_object value)) offsets in
            let? vs := mark_contexts fuel (skipn (Z.to_nat size) context) in
            Some (here ++ vs)
      end
  end.

Definition ecma_gc_mark_executable_object (e : vm_executable_object_t) : option (list visit) :=
  let queue := if flag_set (executable_obj_flags e) ECMA_ASYNC_GENERATOR_CALLED then flat_map (fun t => visit_value (promise t) ++ visit_if_object (operation_value t)) (tasks e) else [] in
  let fixed := queue ++ [VISIT (lex_env_p e); VISIT (function_object_p e)] in
  if flag_set (executable_obj_flags e) (Z.lor ECMA_EXECUTABLE_OBJECT_COMPLETED ECMA_EXECUTABLE_OBJECT_RUNNING)
     && negb (flag_set (executable_obj_flags e) ECMA_EXECUTABLE_OBJECT_DO_AWAIT_OR_YIELD) then Some fixed
  else
    let? c := codes w !! bytecode_header_cp e in
    let registers := Z.to_nat (register_end c) in
    let depth := Z.to_nat (context_depth e) in
    if (registers + depth <=? length (stack e))%nat then
      let? contexts := mark_contexts depth (rev (firstn depth (skipn registers (stack e)))) in
      Some (fixed ++ visit_if_object (frame_this_binding e) ++ visit_values (firstn registers (stack e)) ++ contexts ++ visit_values (skipn (registers + depth) (stack e)) ++ visit_if_object (iterator e))
    else None.

(** ** Objects *)

Definition mark_handler (h : ecma_native_handler) : list visit :=
  match h with
  | PROMISE_RESOLVE promise | PROMISE_REJECT promise => visit_value promise
  | PROMISE_THEN_FINALLY constructor on_finally | PROMISE_CATCH_FINALLY constructor on_finally => visit_value constructor ++ visit_value on_finally
  | PROMISE_CAPABILITY_EXECUTOR capability => visit_value capability
  | PROMISE_ALL_HELPER capability values remaining_elements => visit_value capability ++ visit_value values ++ visit_value remaining_elements
  | PROXY_REVOKE proxy => if negb (ecma_is_value_null proxy) then visit_value proxy else []
  | VALUE_THUNK value | VALUE_THROWER value => visit_if_object value
  | ASYNC_FROM_SYNC_ITERATOR_UNWRAP => []
  end.

(** The inner switch over classes.  The result of a module namespace is final: nothing else
    of the object is visited. *)
Definition mark_class (object_cp : Z) (ob : gc_object) (c : class_object) : option (list visit * bool) :=
  let continue v := Some (v, true) in
  let continue_if m := let? v := m in Some (v, true) in
  match c with
  | CLASS_ARGUMENTS callee mapped _ arguments => continue (ecma_gc_mark_arguments_object callee mapped arguments)
  | CLASS_SCRIPT compiled_code_cp => continue_if (mark_code compiled_code_cp)
  | CLASS_TYPEDARRAY _ arraybuffer => continue (visit_value arraybuffer)
  | CLASS_MODULE_NAMESPACE value => let? vs := ecma_gc_mark_properties object_cp true (properties ob) in Some (VISIT value :: vs, false)
  | CLASS_MODULE m =>
      let? code := (if negb (flag_set (module_flags m) 1) then match compiled_code_p m with Some code_cp => mark_code code_cp | None => Some [] end else Some []) in
      continue (visit_option (scope_p m) ++ visit_option (namespace_object_p m) ++ code ++ visit_values (imports m))
  | CLASS_DATAVIEW buffer_p => continue [VISIT buffer_p]
  | CLASS_CONTAINER MAP_UL _ entries => continue (ecma_gc_mark_map_object entries)
  | CLASS_CONTAINER WEAKMAP_UL _ entries => continue (ecma_gc_mark_weakmap_object entries)
  | CLASS_CONTAINER SET_UL _ entries => continue (ecma_gc_mark_set_object entries)
  | CLASS_GENERATOR e | CLASS_ASYNC_GENERATOR e => continue_if (ecma_gc_mark_executable_object e)
  | CLASS_PROMISE result reactions => continue_if (ecma_gc_mark_promise_object result reactions)
  | CLASS_PROMISE_CAPABILITY promise resolve reject => continue (visit_if_object promise ++ visit_if_object resolve ++ visit_if_object reject)
  | CLASS_ASYNC_FROM_SYNC_ITERATOR sync_iterator sync_next_method =>
      continue (visit_value sync_iterator ++ (if negb (ecma_is_value_undefined sync_next_method) then visit_value sync_next_method else []))
  | CLASS_ARRAY_ITERATOR iterated_value | CLASS_SET_ITERATOR iterated_value | CLASS_MAP_ITERATOR iterated_value =>
      continue (if negb (ecma_is_value_empty iterated_value) then visit_value iterated_value else [])
  | CLASS_REGEXP_STRING_ITERATOR iterating_regexp _ => continue (visit_value iterating_regexp)
  | _ => continue []
  end.

(** The switch over types.  With [Some true] the prototype and the properties follow, with
    [Some false] the properties alone. *)
Definition mark_type (object_cp : Z) (ob : gc_object) : option (list visit * option bool) :=
  let continue v := Some (v, Some true) in
  let mark_array prefix a :=
    if negb (Z.land (length_prop_and_hole_count a) ECMA_ARRAY_TEMPLATE_LITERAL =? 0) then Some (prefix, None)
    else if ecma_op_array_is_fast_array a
    then
      let n := Z.to_nat (array_length a) in
      let? vs := match array_values a with Some values => if (n <=? length values)%nat then Some (visit_values (firstn n values)) else None | None => Some [] end in
      Some (prefix ++ vs ++ visit_if_set (u2_cp ob), None)
    else Some (prefix, Some true) in
  let class_result prefix c := let? (v, more) := mark_class object_cp ob c in Some (prefix ++ v, if more : bool then Some true else None) in
  match body ob with
  | LEX_DECLARATIVE => Some (visit_if_set (u2_cp ob), Some false)
  | LEX_CLASS_DATA type object_p =>
      let? vs := (if type =? ECMA_LEX_ENV_CLASS_TYPE_MODULE then ecma_gc_mark_properties object_cp true (properties ob) else Some []) in
      Some (visit_if_set (u2_cp ob) ++ vs ++ [VISIT object_p], None)
  | LEX_CLASS bound_object_cp | LEX_THIS_OBJECT_BOUND bound_object_cp => Some (visit_if_set (u2_cp ob) ++ [VISIT bound_object_cp], None)
  | GENERAL => continue []
  | BUILT_IN_GENERAL b g => continue (match g with Some g => ecma_gc_mark_global_object g | None => [] end ++ [VISIT (realm_value b)])
  | BUILT_IN_CLASS b c => class_result [VISIT (realm_value b)] c
  | CLASS c => class_result [] c
  | BUILT_IN_ARRAY b a => mark_array [VISIT (realm_value b)] a
  | ARRAY a => mark_array [] a
  | PROXY target handler =>
      Some ((if negb (ecma_is_value_null target) then visit_value target else []) ++ (if negb (ecma_is_value_null handler) then visit_value handler else []), Some false)
  | FUNCTION scope_cp _ bytecode_cp arrow =>
      let? code := codes w !! bytecode_cp in
      let? vs := (if negb (Z.land (status_flags code) CBC_CODE_FLAGS_STATIC_FUNCTION =? 0) then Some [] else ecma_gc_mark_compiled_code (script_value code)) in
      continue ([VISIT (ecma_object_of_tag scope_cp)]
        ++ (if CBC_FUNCTION_IS_ARROW (status_flags code) then visit_if_object arrow.1 ++ visit_if_object arrow.2 else []) ++ vs)
  | BOUND_FUNCTION target_function args_len_or_this _ args => let? vs := ecma_gc_mark_bound_function_object target_function args_len_or_this args in continue vs
  | BUILT_IN_FUNCTION b h => continue (VISIT (realm_value b) :: match h with Some h => mark_handler h | None => [] end)
  | CONSTRUCTOR_FUNCTION script_value => let? vs := ecma_gc_mark_compiled_code script_value in continue vs
  | NATIVE_FUNCTION native_realm_value => continue [VISIT native_realm_value]
  end.

(** All visits of ecma_gc_mark *)
Definition marks (object_cp : Z) : option (list visit) :=
  let? ob := objects w !! object_cp in
  let? (vs, more) := mark_type object_cp ob in
  match more with
  | None => Some vs
  | Some proto => let? ps := ecma_gc_mark_properties object_cp false (properties ob) in Some (vs ++ (if proto : bool then visit_if_set (u2_cp ob) else []) ++ ps)
  end.
End Marks.
