(* ===== verification/Gc.v ===== *)
(** * The garbage collector: src/jjs-core/ecma/base/ecma-gc.c

    ecma_gc_run marks what the objects with references reach and releases the rest: visiting
    an object, with the recursion that the context limits, the chains of black and white
    objects, the sweep and the release of each kind of object with its weak references.
    Blocks and values of other components are released in a log. *)
From Stdlib Require Import ZArith Lia Bool List.
From stdpp Require Import base gmap list.
From S2P Require Import Prelude JmemPointers Values PropNames GcHeap GcMark.
Import ListNotations.
#[local] Open Scope Z_scope.
#[local] Open Scope partial_scope.

(** ** Visiting *)

Definition is_visited (w : gworld) (o : Z) : option bool := let? ob := objects w !! o in Some (ecma_gc_is_object_visited ob).

(** The visits of one object, made with [visit] *)
Fixpoint run_visits (visit_object : Z -> gworld -> option gworld) (vs : list visit) (w : gworld) : option gworld :=
  match vs with
  | [] => Some w
  | VISIT o :: vs => let? w := visit_object o w in run_visits visit_object vs w
  | VISIT_IF_VISITED k o :: vs =>
      let? visited := is_visited w k in
      let? w := (if visited : bool then visit_object o w else Some w) in
      run_visits visit_object vs w
  end.

(** The counter of a gray object is 0 when its visits follow, and 1 when they are left to
    ecma_gc_run.  [limit] is ecma_gc_mark_recursion_limit of the context, which is lowered
    for the visits and raised again after them. *)
Fixpoint ecma_gc_set_object_visited (limit : nat) (o : Z) (w : gworld) : option gworld :=
  let? ob := objects w !! o in
  if ECMA_OBJECT_NON_VISITED <=? type_flags_refs ob then
    let black := put o (set_refs (Z.land (type_flags_refs ob) (ECMA_OBJECT_REF_ONE - 1)) ob) w in
    if negb (gc_mark_limit w =? 0) then
      match limit with
      | S limit => let? vs := marks black o in run_visits (ecma_gc_set_object_visited limit) vs black
      | O => Some (put o (set_refs (Z.land (type_flags_refs ob) (Z.shiftl ECMA_OBJECT_REF_ONE 1 - 1)) ob) w)
      end
    else Some black
  else Some w.

Definition recursion_limit (w : gworld) : nat := Z.to_nat (gc_mark_limit w).

Definition ecma_gc_mark (object_cp : Z) (w : gworld) : option gworld :=
  let? vs := marks w object_cp in run_visits (ecma_gc_set_object_visited (recursion_limit w)) vs w.

(** ** The chains *)

(** The heads of the two chains are objects on the stack, [None] as a pointer *)
Record gc_state := mk_gc_state { world : gworld; black_list_head : Z; black_end_p : option Z; white_gray_list_head : Z }.

Definition set_gc_next (object_cp next_cp : Z) (w : gworld) : option gworld :=
  let? ob := objects w !! object_cp in Some (put object_cp (set_next next_cp ob) w).

Definition set_world (w : gworld) (s : gc_state) : gc_state := mk_gc_state w (black_list_head s) (black_end_p s) (white_gray_list_head s).

(** obj_prev_p->gc_next_cp = next_cp *)
Definition link_white (obj_prev_p : option Z) (next_cp : Z) (s : gc_state) : option gc_state :=
  match obj_prev_p with
  | None => Some (mk_gc_state (world s) (black_list_head s) (black_end_p s) next_cp)
  | Some o => let? w := set_gc_next o next_cp (world s) in Some (set_world w s)
  end.

(** black_end_p->gc_next_cp = next_cp *)
Definition link_black (next_cp : Z) (s : gc_state) : option gc_state :=
  match black_end_p s with
  | None => Some (mk_gc_state (world s) next_cp (black_end_p s) (white_gray_list_head s))
  | Some o => let? w := set_gc_next o next_cp (world s) in Some (set_world w s)
  end.

(** Move an object to the end of the black chain *)
Definition move_to_black (obj_prev_p : option Z) (obj_iter_cp obj_next_cp : Z) (s : gc_state) : option gc_state :=
  let? s := link_white obj_prev_p obj_next_cp s in
  let? s := link_black obj_iter_cp s in
  Some (mk_gc_state (world s) (black_list_head s) (Some obj_iter_cp) (white_gray_list_head s)).

Fixpoint move_roots (fuel : nat) (obj_prev_p : option Z) (obj_iter_cp : Z) (s : gc_state) : option gc_state :=
  if obj_iter_cp =? JMEM_CP_NULL then Some s
  else
    match fuel with
    | O => None
    | S fuel =>
        let? ob := objects (world s) !! obj_iter_cp in
        let obj_next_cp := gc_next_cp ob in
        if ECMA_OBJECT_REF_ONE <=? type_flags_refs ob then
          let? s := move_to_black obj_prev_p obj_iter_cp obj_next_cp s in
          move_roots fuel obj_prev_p obj_next_cp s
        else
          let w := put obj_iter_cp (set_refs (Z.lor (type_flags_refs ob) ECMA_OBJECT_NON_VISITED) ob) (world s) in
          move_roots fuel (Some obj_iter_cp) obj_next_cp (set_world w s)
    end.

Fixpoint mark_roots (fuel : nat) (obj_iter_cp : Z) (w : gworld) : option gworld :=
  if obj_iter_cp =? JMEM_CP_NULL then Some w
  else
    match fuel with
    | O => None
    | S fuel =>
        let? w := ecma_gc_mark obj_iter_cp w in
        let? ob := objects w !! obj_iter_cp in
        mark_roots fuel (gc_next_cp ob) w
    end.

(** One pass over the white and gray objects, with marked_anything_during_current_iteration *)
Fixpoint move_visited (fuel : nat) (obj_prev_p : option Z) (obj_iter_cp : Z) (marked_anything : bool) (s : gc_state) : option (gc_state * bool) :=
  if obj_iter_cp =? JMEM_CP_NULL then Some (s, marked_anything)
  else
    match fuel with
    | O => None
    | S fuel =>
        let? ob := objects (world s) !! obj_iter_cp in
        let obj_next_cp := gc_next_cp ob in
        if ecma_gc_is_object_visited ob then
          let? s := move_to_black obj_prev_p obj_iter_cp obj_next_cp s in
          if negb (gc_mark_limit (world s) =? 0) then
            let? ob := objects (world s) !! obj_iter_cp in
            if ECMA_OBJECT_REF_ONE <=? type_flags_refs ob then
              let w := put obj_iter_cp (set_refs (Z.land (type_flags_refs ob) (ECMA_OBJECT_REF_ONE - 1)) ob) (world s) in
              let? w := ecma_gc_mark obj_iter_cp w in
              move_visited fuel obj_prev_p obj_next_cp true (set_world w s)
            else move_visited fuel obj_prev_p obj_next_cp marked_anything s
          else move_visited fuel obj_prev_p obj_next_cp true s
        else move_visited fuel (Some obj_iter_cp) obj_next_cp marked_anything s
    end.

Fixpoint mark_rest (passes : nat) (s : gc_state) : option gc_state :=
  match passes with
  | O => None
  | S passes =>
      let? (s, marked_anything) := move_visited (S (size (objects (world s)))) None (white_gray_list_head s) false s in
      if marked_anything : bool then mark_rest passes s else Some s
  end.

(** The chain has no more objects than there are, which bounds the loops over it *)
Definition chain_fuel (w : gworld) : nat := S (size (objects w)).

(** The loops of ecma_gc_run before the sweep; the black chain is closed at the end *)
Definition mark_loops (w : gworld) : option gc_state :=
  let? s := move_roots (chain_fuel w) None (ecma_gc_objects_cp w) (mk_gc_state w JMEM_CP_NULL None (ecma_gc_objects_cp w)) in
  let? s := link_black JMEM_CP_NULL s in
  let? w' := mark_roots (chain_fuel w) (black_list_head s) (world s) in
  let? s := mark_rest (chain_fuel w) (set_world w' s) in
  link_black JMEM_CP_NULL s.
