(* ===== verification/GcFree.v ===== *)
(** * The release of objects: src/jjs-core/ecma/base/ecma-gc.c

    ecma_gc_free_object releases what an object owns, and takes it out of the weak
    collections and weak references that know it: the functions of ecma-container-object.c
    and ecma-objects.c for weak references, the release of properties with all internal
    ones, and the whole of ecma_gc_run. *)
From Stdlib Require Import ZArith Lia Bool List.
From stdpp Require Import base gmap list.
From S2P Require Import Prelude JmemPointers Values PropNames GcHeap GcMark Gc.
Import ListNotations.
#[local] Open Scope Z_scope.
#[local] Open Scope partial_scope.

Definition with_class (c : class_object) (ob : gc_object) : gc_object :=
  match body ob with
  | CLASS _ => set_body (CLASS c) ob
  | BUILT_IN_CLASS b _ => set_body (BUILT_IN_CLASS b c) ob
  | _ => ob
  end.

(** ** Weak references *)

(** The property that ecma_find_named_property finds for LIT_INTERNAL_MAGIC_STRING_WEAK_REFS *)
Definition is_weak_refs (s : gc_slot) : bool := match data s with WEAK_REFS _ => true | _ => false end.

(** The first item that is the holder becomes empty; without one the loop leaves the buffer *)
Fixpoint empty_first (ref_holder : Z) (buffer : list Z) : option (list Z) :=
  match buffer with
  | [] => None
  | v :: buffer => if v =? ref_holder then Some (ECMA_VALUE_EMPTY :: buffer) else let? buffer := empty_first ref_holder buffer in Some (v :: buffer)
  end.

Definition unref_slot (ref_holder : Z) (s : gc_slot) : option gc_slot :=
  match data s with WEAK_REFS buffer => let? buffer := empty_first ref_holder buffer in Some (mk_slot (property s) (name_cp s) (WEAK_REFS buffer)) | _ => None end.

Fixpoint unref_pairs (ref_holder : Z) (ps : list gc_pair) : option (list gc_pair) :=
  match ps with
  | [] => None
  | (s, t) :: ps =>
      if is_weak_refs s then let? s := unref_slot ref_holder s in Some ((s, t) :: ps)
      else if is_weak_refs t then let? t := unref_slot ref_holder t in Some ((s, t) :: ps)
      else let? ps := unref_pairs ref_holder ps in Some ((s, t) :: ps)
  end.

(** The search of the property also makes an entry in the lookup cache, which the
    world of the collector does not have. *)
Definition ecma_op_object_unref_weak (object_cp ref_holder : Z) (w : gworld) : option gworld :=
  let? ob := objects w !! object_cp in
  let? ps := unref_pairs ref_holder (properties ob) in
  Some (put object_cp (set_properties ps ob) w).

(** Releases the key and, in a map, the value; the entry becomes empty *)
Definition ecma_op_internal_buffer_delete (id : container_id) (e : Z * Z) : (Z * Z) * list gc_event :=
  match id with
  | WEAKMAP_UL | MAP_UL => ((ECMA_VALUE_EMPTY, ECMA_VALUE_EMPTY), [FREE_VALUE_IF_NOT_OBJECT e.1; FREE_VALUE_IF_NOT_OBJECT e.2])
  | _ => ((ECMA_VALUE_EMPTY, e.2), [FREE_VALUE_IF_NOT_OBJECT e.1])
  end.

Fixpoint delete_entry_of (id : container_id) (key_arg : Z) (entries : list (Z * Z)) : option (list (Z * Z) * list gc_event) :=
  match entries with
  | [] => None
  | e :: entries =>
      if e.1 =? key_arg then let '(e, ev) := ecma_op_internal_buffer_delete id e in Some (e :: entries, ev)
      else let? (entries, ev) := delete_entry_of id key_arg entries in Some (e :: entries, ev)
  end.

Definition ecma_op_container_remove_weak_entry (object_cp key_arg : Z) (w : gworld) : option gworld :=
  let? ob := objects w !! object_cp in
  match class_of ob with
  | Some (CLASS_CONTAINER id size entries) =>
      let? (entries, ev) := delete_entry_of id key_arg entries in
      Some (emit ev (put object_cp (with_class (CLASS_CONTAINER id (u32 (size - 1)) entries) ob) w))
  | _ => None
  end.

(** ** The entries of containers *)

(** Entries of the container, which is read again for each *)
Definition container_entry (object_cp : Z) (i : nat) (w : gworld) : option (container_id * Z * list (Z * Z) * (Z * Z)) :=
  let? ob := objects w !! object_cp in
  match class_of ob with Some (CLASS_CONTAINER id size entries) => let? e := entries !! i in Some (id, size, entries, e) | _ => None end.

Definition set_entry (object_cp : Z) (i : nat) (e : Z * Z) (w : gworld) : option gworld :=
  let? ob := objects w !! object_cp in
  match class_of ob with Some (CLASS_CONTAINER id size entries) => Some (put object_cp (with_class (CLASS_CONTAINER id size (<[i := e]> entries)) ob) w) | _ => None end.

(** The loop body of ecma_op_container_free_weakset_entries and
    ecma_op_container_free_weakmap_entries *)
Definition free_weak_entry (id : container_id) (object_cp : Z) (i : nat) (w : gworld) : option gworld :=
  let? (_, e) := container_entry object_cp i w in
  if ecma_is_value_empty e.1 then Some w
  else
    let? w := ecma_op_object_unref_weak (ecma_object_of_value e.1) (ecma_value_of_object object_cp) w in
    let? w := ecma_op_container_remove_weak_entry object_cp e.1 w in
    match id with
    | WEAKMAP_UL =>
        let? (_, e) := container_entry object_cp i w in
        set_entry object_cp i (ECMA_VALUE_EMPTY, ECMA_VALUE_EMPTY) (emit [FREE_VALUE_IF_NOT_OBJECT e.2] w)
    | _ => let? (_, e) := container_entry object_cp i w in set_entry object_cp i (ECMA_VALUE_EMPTY, e.2) w
    end.

Definition free_entry (id : container_id) (object_cp : Z) (i : nat) (w : gworld) : option gworld :=
  let? (_, e) := container_entry object_cp i w in
  if ecma_is_value_empty e.1 then Some w
  else
    match id with
    | MAP_UL => set_entry object_cp i (ECMA_VALUE_EMPTY, ECMA_VALUE_EMPTY) (emit [FREE_VALUE_IF_NOT_OBJECT e.1; FREE_VALUE_IF_NOT_OBJECT e.2] w)
    | _ => set_entry object_cp i (ECMA_VALUE_EMPTY, e.2) (emit [FREE_VALUE_IF_NOT_OBJECT e.1] w)
    end.

(** [step] for each index in turn *)
Fixpoint each {A} (step : A -> gworld -> option gworld) (l : list A) (w : gworld) : option gworld :=
  match l with [] => Some w | x :: l => let? w := step x w in each step l w end.

Definition ecma_op_container_free_entries (object_cp : Z) (id : container_id) (entries : list (Z * Z)) (w : gworld) : option gworld :=
  let indices := seq 0 (length entries) in
  let? w := each (match id with WEAKSET_UL | WEAKMAP_UL => free_weak_entry id object_cp | SET_UL | MAP_UL => free_entry id object_cp end) indices w in
  let? ob := objects w !! object_cp in
  match class_of ob with Some (CLASS_CONTAINER id _ entries) => Some (put object_cp (with_class (CLASS_CONTAINER id 0 entries) ob) w) | _ => None end.

(** ** Properties *)

(** A reference to the object from a weak reference or a weak container *)
Definition free_weak_ref (object_cp reference_value : Z) (w : gworld) : option gworld :=
  if ecma_is_value_empty reference_value then Some w
  else
    let obj_cp := ecma_object_of_value reference_value in
    let? ob := objects w !! obj_cp in
    match class_of ob with
    | Some (CLASS_WEAKREF _) => Some (put obj_cp (with_class (CLASS_WEAKREF ECMA_VALUE_UNDEFINED) ob) w)
    | _ => ecma_op_container_remove_weak_entry obj_cp (ecma_value_of_object object_cp) w
    end.

Fixpoint private_names (items : list Z) : list gc_event :=
  match items with _ :: name :: _ :: items => DEREF_STRING name :: private_names items | _ => [] end.

Definition free_native_pointer (item : ecma_native_pointer_t) : list gc_event :=
  if has_info item then match free_cb item with Some cb => [FREE_CB cb (native_p item)] | None => [] end else [].

Definition ecma_gc_free_native_pointer (property : Z) (items : list ecma_native_pointer_t) : list gc_event :=
  if flag_set property ECMA_PROPERTY_FLAG_SINGLE_EXTERNAL then match items with item :: _ => free_native_pointer item | [] => [] end
  else flat_map free_native_pointer items.

Definition free_internal (object_cp : Z) (s : gc_slot) (w : gworld) : option gworld :=
  let free ev := Some (emit (ev ++ [FREE_PROPERTY_BLOCK (data s)]) w) in
  match data s with
  | ENVIRONMENT_RECORD _ _ => free []
  | CLASS_FIELD_COMPUTED items => free (map FREE_VALUE items)
  | CLASS_PRIVATE_ELEMENTS items => free (private_names items)
  | WEAK_REFS buffer => let? w := each (free_weak_ref object_cp) buffer w in Some (emit [FREE_PROPERTY_BLOCK (data s)] w)
  | NATIVE_POINTER items | NATIVE_POINTER_WITH_REFERENCES items => free (ecma_gc_free_native_pointer (property s) items)
  | _ => None
  end.

Definition ecma_gc_free_property (object_cp : Z) (free_references second : bool) (s : gc_slot) (w : gworld) : option gworld :=
  let w := if flag_set (property s) ECMA_PROPERTY_FLAG_LCACHED then emit [LCACHE_INVALIDATE object_cp (name_cp s) second] w else w in
  if ECMA_PROPERTY_IS_RAW (property s) then
    let w := if ECMA_PROPERTY_GET_NAME_TYPE (property s) =? ECMA_DIRECT_STRING_PTR then emit [DEREF_STRING (name_cp s)] w else w in
    if flag_set (property s) ECMA_PROPERTY_FLAG_DATA then match data s with DATA value => Some (emit [FREE_VALUE_IF_NOT_OBJECT value] w) | _ => None end
    else if free_references then Some w
    else Some (emit [FREE_PROPERTY_BLOCK (data s)] w)
  else if property s =? ECMA_PROPERTY_TYPE_DELETED then Some w
  else free_internal object_cp s w.

(** The pair is read from the object each time: the weak references of the object may change
    while its properties are released *)
Definition free_slot (object_cp : Z) (free_references : bool) (i : nat) (second : bool) (w : gworld) : option gworld :=
  let? ob := objects w !! object_cp in
  let? p := properties ob !! i in
  ecma_gc_free_property object_cp free_references second (if second then p.2 else p.1) w.

Definition free_pair (object_cp : Z) (free_references : bool) (i : nat) (w : gworld) : option gworld :=
  let? w := free_slot object_cp free_references i false w in
  let? w := free_slot object_cp free_references i true w in
  Some (emit [FREE_PAIR object_cp] w).

Definition ecma_gc_free_properties (object_cp : Z) (free_references : bool) (w : gworld) : option gworld :=
  let? ob := objects w !! object_cp in
  let w := if hashmap ob then emit [HASHMAP_FREE object_cp] w else w in
  each (free_pair object_cp free_references) (seq 0 (length (properties ob))) w.

(** ** Objects *)

Definition ECMA_BUILT_IN_BITSET_SHIFT : Z := 5.

(** The bytes of the bit set of a built-in object *)
Definition bitset_bytes (b : ecma_built_in_props_t) : Z := 8 * Z.shiftr (length_and_bitset_size b) ECMA_BUILT_IN_BITSET_SHIFT.

Definition sizeof_ecma_value_t : Z := 4.

(** ecma_dealloc_object and ecma_dealloc_extended_object *)
Definition dealloc (object_cp : Z) (s : c_struct) (extra : Z) (w : gworld) : option gworld :=
  let? _ := objects w !! object_cp in
  Some (emit [DEALLOC object_cp s extra] (set_objects (delete object_cp (objects w)) w)).

Definition ecma_free_arguments_object (mapped : option (Z * option Z)) (formal_params_number : Z) (arguments : list Z) : list gc_event * c_struct * Z :=
  let saved_argument_count := Z.max (zlength arguments) formal_params_number in
  (match mapped with Some (_, Some byte_code) => [BYTECODE_DEREF byte_code] | _ => [] end ++ map FREE_VALUE_IF_NOT_OBJECT arguments,
   match mapped with Some _ => sizeof_ecma_mapped_arguments_t | None => sizeof_ecma_unmapped_arguments_t end,
   saved_argument_count * sizeof_ecma_value_t).

Definition ECMA_FAST_ARRAY_ALIGNMENT : Z := 8.
Definition ECMA_FAST_ARRAY_ALIGN_LENGTH (length : Z) : Z :=
  u32 (u32 (length + ECMA_FAST_ARRAY_ALIGNMENT - 1) / ECMA_FAST_ARRAY_ALIGNMENT * ECMA_FAST_ARRAY_ALIGNMENT).

Definition ecma_free_fast_access_array (object_cp : Z) (a : array_object) (w : gworld) : option gworld :=
  let aligned_length := ECMA_FAST_ARRAY_ALIGN_LENGTH (array_length a) in
  let? ev := match array_values a with
             | None => Some []
             | Some values =>
                 let n := Z.to_nat aligned_length in
                 if (n <=? length values)%nat then Some (map FREE_VALUE_IF_NOT_OBJECT (firstn n values) ++ [FREE_ARRAY_VALUES aligned_length]) else None
             end in
  dealloc object_cp sizeof_ecma_extended_object_t 0 (emit ev w).

(** vm_stack_context_abort of a context whose values are no objects any more; the offsets of
    the values of objects have become undefined *)
Definition drop_objects (offsets : list Z) (context : list Z) : list Z :=
  foldl (fun context offset =>
    match context !! Z.to_nat (offset - 1) with Some v => if ecma_is_value_object v then <[Z.to_nat (offset - 1) := ECMA_VALUE_UNDEFINED]> context else context | None => context end) context offsets.

Definition vm_stack_context_abort (context : list Z) : option (list gc_event * Z) :=
  let? context_info := context !! 0%nat in
  let type := VM_GET_CONTEXT_TYPE context_info in
  let item k := context !! Z.to_nat (k - 1) in
  if (type =? VM_CONTEXT_FINALLY_THROW) || (type =? VM_CONTEXT_FINALLY_RETURN) then let? v := item 2 in Some ([FREE_VALUE v], 2)
  else if type =? VM_CONTEXT_FINALLY_JUMP then Some ([], 2)
  else if type <=? VM_CONTEXT_WITH then Some ([], 1)
  else if type =? VM_CONTEXT_FOR_IN then
    let? collection := item 2 in let? index := item 3 in let? v := item 4 in Some ([FREE_FOR_IN collection index; FREE_VALUE v], 4)
  else let? a := item 2 in let? b := item 3 in let? c := item 4 in Some ([FREE_VALUE a; FREE_VALUE b; FREE_VALUE c], 4).

Fixpoint free_contexts (fuel : nat) (context : list Z) : option (list gc_event) :=
  match context with
  | [] => Some []
  | context_word :: items =>
      match fuel with
      | O => None
      | S fuel =>
          if VM_CONTEXT_IS_VARIABLE_LENGTH (VM_GET_CONTEXT_TYPE context_word) then
            let n := Z.to_nat (Z.max 1 (VM_GET_CONTEXT_END context_word - 1)) in
            if (n <=? length items)%nat then let? ev := free_contexts fuel (skipn n items) in Some (map FREE_VALUE_IF_NOT_OBJECT (firstn n items) ++ ev) else None
          else
            let '(offsets, _) := context_offsets 4 (vm_get_context_value_offsets (VM_GET_CONTEXT_TYPE context_word)) in
            let? (here, size) := vm_stack_context_abort (drop_objects offsets context) in
            let? ev := free_contexts fuel (skipn (Z.to_nat size) context) in
            Some (here ++ ev)
      end
  end.

(** The object is aligned to a pointer *)
Definition ecma_gc_free_executable_object (w : gworld) (e : vm_executable_object_t) : option (list gc_event * Z) :=
  let? c := codes w !! bytecode_header_cp e in
  let bytes := (register_end c + stack_limit c) * sizeof_ecma_value_t in
  let queue := if flag_set (executable_obj_flags e) ECMA_ASYNC_GENERATOR_CALLED then flat_map (fun t => [FREE_VALUE_IF_NOT_OBJECT (operation_value t); FREE_TASK]) (tasks e) else [] in
  let start := BYTECODE_DEREF (bytecode_header_cp e) :: queue in
  if flag_set (executable_obj_flags e) ECMA_EXECUTABLE_OBJECT_COMPLETED then Some (start, bytes)
  else
    let registers := Z.to_nat (register_end c) in
    let depth := Z.to_nat (context_depth e) in
    if (registers + depth <=? length (stack e))%nat then
      let? contexts := free_contexts depth (rev (firstn depth (skipn registers (stack e)))) in
      Some (start ++ FREE_VALUE_IF_NOT_OBJECT (frame_this_binding e) :: map FREE_VALUE_IF_NOT_OBJECT (firstn registers (stack e)) ++ contexts
            ++ map FREE_VALUE_IF_NOT_OBJECT (skipn (registers + depth) (stack e)), bytes)
    else None.

(** What the release of a class leaves to do: the properties and the object with its size, or
    the object as a module namespace *)
Definition free_class (object_cp : Z) (default : c_struct) (extra : Z) (c : class_object) (w : gworld) : option (gworld * c_struct * Z * bool) :=
  let continue ev := Some (emit ev w, default, extra, false) in
  let resize ev s n := Some (emit ev w, s, n, false) in
  match c with
  | CLASS_STRING value | CLASS_NUMBER value | CLASS_SYMBOL value | CLASS_BIGINT value => continue [FREE_VALUE value]
  | CLASS_ARGUMENTS _ mapped formal_params_number arguments => let '(ev, s, n) := ecma_free_arguments_object mapped formal_params_number arguments in resize ev s n
  | CLASS_TYPEDARRAY typedarray_flags _ => if flag_set typedarray_flags 1 then resize [] sizeof_ecma_extended_typedarray_object_t 0 else continue []
  | CLASS_MODULE_NAMESPACE _ => Some (w, sizeof_ecma_extended_object_t, 0, true)
  | CLASS_SCRIPT compiled_code_cp => continue [BYTECODE_DEREF compiled_code_cp]
  | CLASS_DATE => resize [] sizeof_ecma_date_object_t 0
  | CLASS_REGEXP bytecode => continue [BYTECODE_DEREF bytecode]
  | CLASS_STRING_ITERATOR iterated_value => continue (if negb (ecma_is_value_empty iterated_value) then [DEREF_STRING iterated_value] else [])
  | CLASS_REGEXP_STRING_ITERATOR _ iterated_string => resize (if negb (ecma_is_value_empty iterated_string) then [DEREF_STRING iterated_string] else []) sizeof_ecma_regexp_string_iterator_t 0
  | CLASS_ARRAY_BUFFER array_buffer_flags length | CLASS_SHARED_ARRAY_BUFFER array_buffer_flags length =>
      if negb (flag_set array_buffer_flags 1) then resize [] default (extra + length)
      else resize (if flag_set array_buffer_flags 2 then [RELEASE_BUFFER object_cp] else []) sizeof_ecma_arraybuffer_pointer_t 0
  | CLASS_WEAKREF target =>
      if negb (ecma_is_value_undefined target)
      then let? w := ecma_op_object_unref_weak (ecma_object_of_value target) (ecma_value_of_object object_cp) w in Some (w, default, extra, false)
      else continue []
  | CLASS_CONTAINER id _ entries =>
      let? w := ecma_op_container_free_entries object_cp id entries w in Some (emit [COLLECTION_DESTROY object_cp] w, default, extra, false)
  | CLASS_DATAVIEW _ => resize [] sizeof_ecma_dataview_object_t 0
  | CLASS_GENERATOR e | CLASS_ASYNC_GENERATOR e => let? (ev, n) := ecma_gc_free_executable_object w e in resize ev sizeof_vm_executable_object_t n
  | CLASS_PROMISE result reactions => resize [FREE_VALUE_IF_NOT_OBJECT result; COLLECTION_DESTROY object_cp] sizeof_ecma_promise_object_t 0
  | CLASS_PROMISE_CAPABILITY _ _ _ => resize [] sizeof_ecma_promise_capabality_t 0
  | CLASS_ASYNC_FROM_SYNC_ITERATOR _ _ => resize [] sizeof_ecma_async_from_sync_iterator_object_t 0
  | CLASS_MODULE _ => resize [RELEASE_MODULE object_cp] sizeof_ecma_module_t 0
  | CLASS_ARRAY_ITERATOR _ | CLASS_SET_ITERATOR _ | CLASS_MAP_ITERATOR _ | CLASS_OTHER => continue []
  end.

Definition free_handler (h : ecma_native_handler) : list gc_event * c_struct :=
  match h with
  | PROMISE_RESOLVE _ | PROMISE_REJECT _ => ([], sizeof_ecma_promise_resolver_t)
  | PROMISE_THEN_FINALLY _ _ | PROMISE_CATCH_FINALLY _ _ => ([], sizeof_ecma_promise_finally_function_t)
  | PROMISE_CAPABILITY_EXECUTOR _ => ([], sizeof_ecma_promise_capability_executor_t)
  | PROMISE_ALL_HELPER _ _ _ => ([], sizeof_ecma_promise_all_executor_t)
  | PROXY_REVOKE _ => ([], sizeof_ecma_revocable_proxy_object_t)
  | VALUE_THUNK value | VALUE_THROWER value => ([FREE_VALUE_IF_NOT_OBJECT value], sizeof_ecma_promise_value_thunk_t)
  | ASYNC_FROM_SYNC_ITERATOR_UNWRAP => ([], sizeof_ecma_extended_object_t)
  end.

Definition free_bound_function (args_len_or_this target_length : Z) (args : list Z) : option (list gc_event * Z) :=
  if negb (ecma_is_value_integer_number args_len_or_this) then Some ([FREE_VALUE target_length; FREE_VALUE_IF_NOT_OBJECT args_len_or_this], 0)
  else
    let args_length := Z.to_nat (ecma_get_integer_from_value args_len_or_this) in
    if (args_length <=? length args)%nat then Some (FREE_VALUE target_length :: map FREE_VALUE_IF_NOT_OBJECT (firstn args_length args), Z.of_nat args_length * sizeof_ecma_value_t) else None.

(** The properties, then the object *)
Definition free_rest (object_cp : Z) (free_references : bool) (s : c_struct) (extra : Z) (w : gworld) : option gworld :=
  let? w := ecma_gc_free_properties object_cp free_references w in dealloc object_cp s extra w.

Definition count_down (w : gworld) : gworld := set_chain (ecma_gc_objects_cp w) (u32 (ecma_gc_objects_number w - 1)) (ecma_gc_new_objects w) w.

Definition ecma_gc_free_object (object_cp : Z) (w : gworld) : option gworld :=
  let? ob := objects w !! object_cp in
  let w := count_down w in
  let finish s extra w := free_rest object_cp false s extra w in
  let class_result default extra c := let? (w, s, n, references) := free_class object_cp default extra c w in free_rest object_cp references s n w in
  match body ob with
  | LEX_CLASS_DATA type _ =>
      let? w := (if type =? ECMA_LEX_ENV_CLASS_TYPE_MODULE then ecma_gc_free_properties object_cp true w else Some w) in
      dealloc object_cp sizeof_ecma_lexical_environment_class_t 0 w
  | LEX_DECLARATIVE => finish sizeof_ecma_object_t 0 w
  | LEX_CLASS _ | LEX_THIS_OBJECT_BOUND _ => dealloc object_cp sizeof_ecma_object_t 0 w
  | GENERAL => finish sizeof_ecma_object_t 0 w
  | BUILT_IN_GENERAL b g => match g with Some _ => finish sizeof_ecma_global_object_t 0 w | None => finish sizeof_ecma_extended_object_t (bitset_bytes b) w end
  | BUILT_IN_CLASS b c => class_result sizeof_ecma_extended_built_in_object_t (bitset_bytes b) c
  | CLASS c => class_result sizeof_ecma_extended_object_t 0 c
  | BUILT_IN_ARRAY b a => if ecma_op_array_is_fast_array a then ecma_free_fast_access_array object_cp a w else finish sizeof_ecma_extended_built_in_object_t (bitset_bytes b) w
  | ARRAY a => if ecma_op_array_is_fast_array a then ecma_free_fast_access_array object_cp a w else finish sizeof_ecma_extended_object_t 0 w
  | PROXY _ _ => finish sizeof_ecma_proxy_object_t 0 w
  | FUNCTION _ static bytecode_cp arrow =>
      if negb static then
        let? code := codes w !! bytecode_cp in
        if CBC_FUNCTION_IS_ARROW (status_flags code)
        then finish sizeof_ecma_arrow_function_t 0 (emit [FREE_VALUE_IF_NOT_OBJECT arrow.1; FREE_VALUE_IF_NOT_OBJECT arrow.2; BYTECODE_DEREF bytecode_cp] w)
        else finish sizeof_ecma_extended_object_t 0 (emit [BYTECODE_DEREF bytecode_cp] w)
      else finish sizeof_ecma_static_function_t 0 w
  | BUILT_IN_FUNCTION b h =>
      if routine_id b =? 0 then finish sizeof_ecma_extended_object_t (bitset_bytes b) w
      else match h with Some h => let '(ev, s) := free_handler h in finish s 0 (emit ev w) | None => finish sizeof_ecma_extended_object_t 0 w end
  | BOUND_FUNCTION _ args_len_or_this target_length args =>
      let? (ev, n) := free_bound_function args_len_or_this target_length args in
      finish sizeof_ecma_bound_function_t n (emit ev w)
  | CONSTRUCTOR_FUNCTION script_value => finish sizeof_ecma_extended_object_t 0 (emit [SCRIPT_DEREF script_value] w)
  | NATIVE_FUNCTION _ => finish sizeof_ecma_native_function_t 0 w
  end.

(** ** The collector *)

Fixpoint sweep (fuel : nat) (obj_iter_cp : Z) (w : gworld) : option gworld :=
  if obj_iter_cp =? JMEM_CP_NULL then Some w
  else
    match fuel with
    | O => None
    | S fuel =>
        let? ob := objects w !! obj_iter_cp in
        let? w := ecma_gc_free_object obj_iter_cp w in
        sweep fuel (gc_next_cp ob) w
    end.

(** Everything before the sweep *)
Definition mark_phase (w : gworld) : option gc_state := mark_loops (set_chain (ecma_gc_objects_cp w) (ecma_gc_objects_number w) 0 w).

Definition ecma_gc_run (w : gworld) : option gworld :=
  let? s := mark_phase w in
  let w := world s in
  let w := set_chain (black_list_head s) (ecma_gc_objects_number w) (ecma_gc_new_objects w) w in
  let? w := sweep (chain_fuel w) (white_gray_list_head s) w in
  Some (emit [RE_CACHE_GC] w).
