(* ===== verification/GcMarking.v ===== *)
(** * Marking visits what is reachable

    The order in which objects are visited is a list that only grows.  An object is settled
    when its visits have been made: all objects it refers to are in the list, and the values
    of weak maps whose other side was visited before it.  Visiting and marking extend the
    list by reachable objects which are settled, or gray and left for later. *)
From Stdlib Require Import ZArith Lia Bool List.
From stdpp Require Import base gmap list.
From S2P Require Import Prelude JmemPointers Values PropNames GcHeap GcMark Gc.
Import ListNotations.
#[local] Open Scope Z_scope.

(** ** Bits of the descriptor *)

Lemma whiten_bits f : 0 <= f < 32 -> Z.lor f ECMA_OBJECT_NON_VISITED = f + ECMA_OBJECT_NON_VISITED.
Proof. intros H. change ECMA_OBJECT_NON_VISITED with (134217727 * 2 ^ 5). rewrite Z.lor_comm, lor_mul_low by (change (2 ^ 5) with 32; lia). lia. Qed.

Lemma low_bits n f k m : 0 <= f < 2 ^ n -> 0 <= n -> m = 2 ^ n - 1 -> Z.land (f + k * 2 ^ n) m = f.
Proof. intros Hf Hn Hm. rewrite (land_ones' _ n m Hm Hn). rewrite Z.mod_add by lia. apply Z.mod_small; lia. Qed.

Lemma black_bits f : 0 <= f < 32 -> Z.land (f + ECMA_OBJECT_NON_VISITED) (ECMA_OBJECT_REF_ONE - 1) = f.
Proof. intros H. change ECMA_OBJECT_NON_VISITED with (134217727 * 2 ^ 5). apply (low_bits 5); [exact H | lia | reflexivity]. Qed.

Lemma gray_bits f : 0 <= f < 32 -> Z.land (f + ECMA_OBJECT_NON_VISITED) (Z.shiftl ECMA_OBJECT_REF_ONE 1 - 1) = f + 32.
Proof.
  intros H. replace (f + ECMA_OBJECT_NON_VISITED) with ((f + 32) + 67108863 * 2 ^ 6) by (change ECMA_OBJECT_NON_VISITED with 4294967264; change (2 ^ 6) with 64; lia).
  apply (low_bits 6); [change (2 ^ 6) with 64; lia | lia | reflexivity].
Qed.

Lemma ungray_bits f : 0 <= f < 32 -> Z.land (f + 32) (ECMA_OBJECT_REF_ONE - 1) = f.
Proof. intros H. replace (f + 32) with (f + 1 * 2 ^ 5) by reflexivity. apply (low_bits 5); [exact H | lia | reflexivity]. Qed.

(** ** What marking reads *)

Definition static (ob : gc_object) : Z * object_body * bool * list gc_pair := (u2_cp ob, body ob, hashmap ob, properties ob).
Definition flags_of (w : gworld) (x : Z) : option Z := type_flags_refs <$> objects w !! x.
Definition next_of (w : gworld) (x : Z) : option Z := gc_next_cp <$> objects w !! x.

Record frozen (w w' : gworld) : Prop := {
  frozen_static : forall x, static <$> objects w !! x = static <$> objects w' !! x;
  frozen_codes : codes w' = codes w;
  frozen_scripts : scripts w' = scripts w;
  frozen_limit : gc_mark_limit w' = gc_mark_limit w;
  frozen_number : ecma_gc_objects_number w' = ecma_gc_objects_number w;
  frozen_new : ecma_gc_new_objects w' = ecma_gc_new_objects w;
  frozen_log : log w' = log w
}.

#[export] Instance frozen_refl : Reflexive frozen.
Proof. now constructor. Qed.

#[export] Instance frozen_trans : Transitive frozen.
Proof. intros a b c [S1 C1 P1 L1 N1 E1 G1] [S2 C2 P2 L2 N2 E2 G2]. constructor; intros; congruence. Qed.

Lemma frozen_put w x ob ob' : objects w !! x = Some ob -> static ob' = static ob -> frozen w (put x ob' w).
Proof.
  intros Hx Hs. constructor; try reflexivity. intros y. cbn [put set_objects objects]. destruct (decide (y = x)) as [-> | Hne]; [now rewrite lookup_insert_eq, Hx; cbn; rewrite Hs | now rewrite lookup_insert_ne].
Qed.

Lemma visit_all_ext {A} (f g : A -> option (list visit)) l : (forall x, f x = g x) -> visit_all f l = visit_all g l.
Proof. intros H. induction l as [| x l IH]; [reflexivity |]. cbn [visit_all]. now rewrite H, IH. Qed.

Section Frozen.
Variables w w' : gworld.
Hypothesis Hfrozen : frozen w w'.

Lemma frozen_lookup x : objects w !! x = None /\ objects w' !! x = None
  \/ exists ob ob', objects w !! x = Some ob /\ objects w' !! x = Some ob' /\ u2_cp ob' = u2_cp ob /\ body ob' = body ob /\ hashmap ob' = hashmap ob /\ properties ob' = properties ob.
Proof.
  pose proof (frozen_static _ _ Hfrozen x) as E. destruct (objects w !! x) as [ob |], (objects w' !! x) as [ob' |]; try discriminate; [right | now left].
  cbn in E. unfold static in E. injection E as E1 E2 E3 E4. exists ob, ob'. now splits.
Qed.

Lemma mark_weak_ref_frozen o v : mark_weak_ref w' o v = mark_weak_ref w o v.
Proof.
  unfold mark_weak_ref. destruct (ecma_is_value_empty v); [reflexivity |]. destruct (frozen_lookup (ecma_object_of_value v)) as [[-> ->] | (ob & ob' & -> & -> & _ & Eb & _)]; [reflexivity |].
  unfold weakmap_entries, class_of. now rewrite Eb.
Qed.

Lemma mark_internal_frozen o s : mark_internal w' o s = mark_internal w o s.
Proof. unfold mark_internal. destruct (data s); try reflexivity. apply visit_all_ext. intros v. apply mark_weak_ref_frozen. Qed.

Lemma mark_properties_frozen o b ps : ecma_gc_mark_properties w' o b ps = ecma_gc_mark_properties w o b ps.
Proof. unfold ecma_gc_mark_properties. apply visit_all_ext. intros [s t]. unfold mark_slot. now rewrite !mark_internal_frozen. Qed.

Lemma mark_code_frozen cp : ecma_gc_mark_compiled_code w' cp = ecma_gc_mark_compiled_code w cp.
Proof. unfold ecma_gc_mark_compiled_code. now rewrite (frozen_scripts _ _ Hfrozen). Qed.

Lemma mark_executable_frozen e : ecma_gc_mark_executable_object w' e = ecma_gc_mark_executable_object w e.
Proof. unfold ecma_gc_mark_executable_object. now rewrite (frozen_codes _ _ Hfrozen). Qed.

Lemma mark_code_cp_frozen cp : mark_code w' cp = mark_code w cp.
Proof. unfold mark_code. rewrite (frozen_codes _ _ Hfrozen). destruct (codes w !! cp); [apply mark_code_frozen | reflexivity]. Qed.

Lemma mark_class_frozen o ob ob' c : properties ob' = properties ob -> mark_class w' o ob' c = mark_class w o ob c.
Proof.
  intros Ep. unfold mark_class. rewrite Ep. destruct c; try reflexivity; rewrite ?mark_properties_frozen, ?mark_executable_frozen, ?mark_code_cp_frozen; try reflexivity.
  destruct (compiled_code_p m); [now rewrite mark_code_cp_frozen | reflexivity].
Qed.

Lemma marks_frozen x : marks w' x = marks w x.
Proof.
  unfold marks. destruct (frozen_lookup x) as [[-> ->] | (ob & ob' & -> & -> & Eu & Eb & _ & Ep)]; [reflexivity |].
  assert (E : mark_type w' x ob' = mark_type w x ob).
  { unfold mark_type. rewrite Eb, Eu, Ep. destruct (body ob); rewrite ?(mark_class_frozen x ob ob' _ Ep), ?mark_properties_frozen, ?mark_code_frozen, ?(frozen_codes _ _ Hfrozen); try reflexivity.
    destruct (codes w !! bytecode_cp); [now rewrite mark_code_frozen | reflexivity]. }
  rewrite E. destruct (mark_type w x ob) as [[vs [proto |]] |]; [| reflexivity | reflexivity]. now rewrite Ep, Eu, mark_properties_frozen.
Qed.
End Frozen.

(** ** Marking *)

(** Where a visit leads to, on condition *)
Definition mentions (y : Z) (v : visit) : Prop := match v with VISIT o => o = y | VISIT_IF_VISITED k o => k = y \/ o = y end.

Section Marking.
(** The world at the start, without objects that are not visited *)
Variable w0 : gworld.

Definition is_root (x : Z) : Prop := exists f, flags_of w0 x = Some f /\ 32 <= f.

Definition knows (x : Z) (v : visit) : Prop := exists vs, marks w0 x = Some vs /\ In v vs.

(** What the references of the program reach; a value of a weak map when its key and the map
    are reached *)
Inductive reached : Z -> Prop :=
| reached_root x : is_root x -> reached x
| reached_visit x y : reached x -> knows x (VISIT y) -> reached y
| reached_weak m k y : reached m -> reached k -> knows m (VISIT_IF_VISITED k y) -> reached y.

Definition word_ok (f : Z) : Prop := 0 <= f < ECMA_OBJECT_NON_VISITED.

Hypothesis Hwords : forall x f, flags_of w0 x = Some f -> word_ok f.
Hypothesis Htotal : forall x, is_Some (objects w0 !! x) -> exists vs, marks w0 x = Some vs /\ forall v y, In v vs -> mentions y v -> is_Some (objects w0 !! y).
Hypothesis Hlimit : gc_mark_limit w0 <> 0.

(** The descriptors of objects when the ones in [L] are visited: gray objects count as one *)
Definition descriptor (w : gworld) (L : list Z) (x f : Z) : Prop :=
  if 32 <=? f then flags_of w x = Some f /\ x ∈ L
  else if decide (x ∈ L) then flags_of w x = Some f \/ flags_of w x = Some (f + 32)
  else flags_of w x = Some (f + ECMA_OBJECT_NON_VISITED).

Record marking (w : gworld) (L : list Z) : Prop := {
  mk_frozen : frozen w0 w;
  mk_words : forall x f, flags_of w0 x = Some f -> descriptor w L x f;
  mk_nodup : NoDup L;
  mk_reached : Forall reached L
}.

Definition gray (w : gworld) (x : Z) : Prop := exists f, flags_of w0 x = Some f /\ f < 32 /\ flags_of w x = Some (f + 32).

(** [k] was visited when the visits of [x] were made *)
Definition before (L : list Z) (k x : Z) : Prop := is_root k \/ k = x \/ exists A B, L = A ++ x :: B /\ k ∈ A.

Definition settled (L : list Z) (x : Z) : Prop :=
  forall v, knows x v -> match v with VISIT y => y ∈ L | VISIT_IF_VISITED k y => before L k x -> y ∈ L end.

Record visited (w : gworld) (L : list Z) (w' : gworld) (N : list Z) : Prop := {
  vs_marking : marking w' (L ++ N);
  vs_new : Forall (fun x => gray w' x \/ settled (L ++ N) x) N;
  vs_same : forall x, x ∉ N -> objects w' !! x = objects w !! x;
  vs_next : forall x, next_of w' x = next_of w x
}.

Lemma before_app L N k x : NoDup (L ++ N) -> x ∈ L -> before (L ++ N) k x -> before L k x.
Proof.
  intros Hnd Hx [H | [H | (A & B & E & Hk)]]; [now left | now right; left |]. right; right. apply list_elem_of_split in Hx as (A' & B' & ->).
  rewrite <- app_assoc in E. cbn [app] in E. rewrite <- app_assoc in Hnd. cbn [app] in Hnd.
  assert (A = A') as ->.
  { clear - E Hnd. revert A E Hnd. induction A' as [| a A' IH]; intros [| b A] E Hnd; cbn in *; try reflexivity.
    - injection E as -> E. apply NoDup_cons in Hnd as [H _]. exfalso. apply H. rewrite E, elem_of_app. right. now left.
    - injection E as <- E. apply NoDup_cons in Hnd as [H _]. exfalso. apply H. rewrite elem_of_app. right. now left.
    - injection E as <- E. apply NoDup_cons in Hnd as [_ Hnd]. now rewrite (IH A E Hnd). }
  now exists A', B'.
Qed.

Lemma settled_app L N x : NoDup (L ++ N) -> x ∈ L -> settled L x -> settled (L ++ N) x.
Proof.
  intros Hnd Hx Hs v Hv. specialize (Hs v Hv). destruct v as [y | k y]; [rewrite elem_of_app; now left |]. intros Hb. rewrite elem_of_app. left. apply Hs. now apply (before_app L N).
Qed.

Lemma before_visited w L k x : marking w L -> is_Some (objects w0 !! k) -> before L k x -> x ∈ L -> k ∈ L.
Proof.
  intros Hm Hk [(f & Hf & Hr) | [-> | (A & B & -> & Ha)]] Hx; [| exact Hx | rewrite elem_of_app; now left].
  pose proof (mk_words _ _ Hm k f Hf) as H. unfold descriptor in H. rewrite (proj2 (Z.leb_le _ _)) in H by lia. apply H.
Qed.

Lemma gray_same w w' x : objects w' !! x = objects w !! x -> gray w x -> gray w' x.
Proof. intros E (f & H1 & H2 & H3). exists f. unfold flags_of in *. now rewrite E. Qed.

Lemma visited_trans w L w1 N1 w2 N2 : visited w L w1 N1 -> visited w1 (L ++ N1) w2 N2 -> visited w L w2 (N1 ++ N2).
Proof.
  intros [M1 New1 S1 X1] [M2 New2 S2 X2]. rewrite <- app_assoc in *. constructor; [exact M2 | | | intros; now rewrite X2].
  - pose proof (mk_nodup _ _ M2) as Hnd. rewrite app_assoc in Hnd. apply Forall_app. split; [| exact New2]. rewrite Forall_forall in New1 |- *. intros x Hx.
    assert (Hx2 : x ∉ N2).
    { intros H. apply NoDup_app in Hnd as (_ & Hd & _). apply (Hd x); [rewrite elem_of_app; now right | exact H]. }
    destruct (New1 x Hx) as [Hg | Hs]; [left; exact (gray_same w1 w2 x (S2 x Hx2) Hg) | right]. rewrite app_assoc. apply settled_app; [exact Hnd | rewrite elem_of_app; now right | exact Hs].
  - intros x Hx. rewrite elem_of_app in Hx. rewrite S2 by tauto. apply S1. tauto.
Qed.

Lemma visited_nil w L : marking w L -> visited w L w [].
Proof. intros Hm. constructor; rewrite ?app_nil_r; [exact Hm | constructor | easy | easy]. Qed.

Lemma not_visited_flags w L x ob : marking w L -> objects w !! x = Some ob -> ECMA_OBJECT_NON_VISITED <= type_flags_refs ob ->
  x ∉ L /\ exists f, flags_of w0 x = Some f /\ 0 <= f < 32 /\ type_flags_refs ob = f + ECMA_OBJECT_NON_VISITED.
Proof.
  intros Hm Hx Hf. destruct (frozen_lookup _ _ (mk_frozen _ _ Hm) x) as [[_ E] | (b & ob' & Eb & E & _)]; rewrite Hx in E; [discriminate |]. injection E as <-.
  assert (Hb : flags_of w0 x = Some (type_flags_refs b)) by (unfold flags_of; now rewrite Eb). pose proof (Hwords x _ Hb) as Hw. pose proof (mk_words _ _ Hm x _ Hb) as H. unfold descriptor, flags_of in H. rewrite Hx in H. cbn in H.
  unfold word_ok in Hw. change ECMA_OBJECT_NON_VISITED with 4294967264 in *. destruct (Z.leb_spec 32 (type_flags_refs b)); [destruct H as [H _]; injection H; lia |].
  destruct (decide (x ∈ L)) as [Hin | Hnin]; [destruct H as [H | H]; injection H; lia |]. split; [exact Hnin |]. exists (type_flags_refs b). injection H as H. split; [exact Hb | lia].
Qed.

Lemma visited_flags w L x ob : marking w L -> objects w !! x = Some ob -> type_flags_refs ob < ECMA_OBJECT_NON_VISITED -> x ∈ L.
Proof.
  intros Hm Hx Hf. destruct (frozen_lookup _ _ (mk_frozen _ _ Hm) x) as [[_ E] | (b & ob' & Eb & E & _)]; rewrite Hx in E; [discriminate |]. injection E as <-.
  assert (Hb : flags_of w0 x = Some (type_flags_refs b)) by (unfold flags_of; now rewrite Eb). pose proof (Hwords x _ Hb) as Hw. pose proof (mk_words _ _ Hm x _ Hb) as H. unfold descriptor, flags_of in H. rewrite Hx in H. cbn in H.
  destruct (Z.leb_spec 32 (type_flags_refs b)); [now destruct H |]. destruct (decide (x ∈ L)) as [Hin | Hnin]; [exact Hin |]. injection H. unfold word_ok in Hw. lia.
Qed.

Lemma is_visited_spec w L k : marking w L -> is_Some (objects w0 !! k) -> is_visited w k = Some (bool_decide (k ∈ L)).
Proof.
  intros Hm [b Hk]. unfold is_visited, ecma_gc_is_object_visited. destruct (frozen_lookup _ _ (mk_frozen _ _ Hm) k) as [[E _] | (b' & ob & _ & E & _)]; [congruence |]. rewrite E. f_equal.
  destruct (Z.ltb_spec (type_flags_refs ob) ECMA_OBJECT_NON_VISITED) as [H | H].
  - symmetry. apply bool_decide_eq_true. exact (visited_flags w L k ob Hm E H).
  - symmetry. apply bool_decide_eq_false. exact (proj1 (not_visited_flags w L k ob Hm E H)).
Qed.

(** A white object becomes black or gray *)
Lemma marking_push w L x ob f g : marking w L -> objects w !! x = Some ob -> x ∉ L -> flags_of w0 x = Some f -> f < 32 -> g = f \/ g = f + 32 -> reached x ->
  marking (put x (set_refs g ob) w) (L ++ [x]).
Proof.
  intros Hm Hx Hn Hf Hlow Hg Hr. constructor.
  - etransitivity; [exact (mk_frozen _ _ Hm) |]. apply (frozen_put w x ob); [exact Hx | reflexivity].
  - intros y fy Hy. pose proof (mk_words _ _ Hm y fy Hy) as H. unfold descriptor, flags_of in *. cbn [put set_objects objects]. destruct (decide (y = x)) as [-> | Hne].
    + rewrite lookup_insert_eq. cbn. rewrite Hf in Hy. injection Hy as <-. rewrite (proj2 (Z.leb_gt _ _)) by lia. rewrite decide_True by (rewrite elem_of_app; right; now left).
      destruct Hg as [-> | ->]; [now left | now right].
    + rewrite lookup_insert_ne by congruence. destruct (32 <=? fy); [now rewrite elem_of_app; split; [| left] |]. destruct (decide (y ∈ L)); [rewrite decide_True by (rewrite elem_of_app; now left); exact H |].
      rewrite decide_False; [exact H |]. rewrite elem_of_app. intros [? | H1]; [easy |]. apply list_elem_of_singleton in H1. easy.
  - rewrite NoDup_app. split; [exact (mk_nodup _ _ Hm) |]. split; [intros y Hy H1; apply list_elem_of_singleton in H1; now subst | apply NoDup_singleton].
  - apply Forall_app. split; [exact (mk_reached _ _ Hm) | now constructor].
Qed.

Lemma next_put w x g ob y : objects w !! x = Some ob -> next_of (put x (set_refs g ob) w) y = next_of w y.
Proof.
  intros Hx. unfold next_of. cbn [put set_objects objects]. destruct (decide (y = x)) as [-> | Hne]; [rewrite lookup_insert_eq, Hx; reflexivity | now rewrite lookup_insert_ne].
Qed.

(** The visits of an object in the list settle it *)
Lemma settle w L w' N x vs : marking w L -> x ∈ L -> marks w0 x = Some vs -> visited w L w' N -> (forall v y, In v vs -> mentions y v -> is_Some (objects w0 !! y)) ->
  (forall y, In (VISIT y) vs -> y ∈ L ++ N) -> (forall k y, In (VISIT_IF_VISITED k y) vs -> k ∈ L -> y ∈ L ++ N) -> settled (L ++ N) x.
Proof.
  intros Hm Hx Hvs Hv Hok H1 H2 v (vs' & E & Hin). rewrite Hvs in E. injection E as <-. destruct v as [y | k y]; [now apply H1 |]. intros Hb. apply (H2 k y Hin).
  apply (before_visited w L k x Hm); [apply (Hok _ k Hin); now left | | exact Hx]. apply (before_app L N); [exact (mk_nodup _ _ (vs_marking _ _ _ _ Hv)) | exact Hx | exact Hb].
Qed.

(** What is asked of a function that visits one object *)
Definition visits_one (visit_object : Z -> gworld -> option gworld) : Prop :=
  forall w L o, marking w L -> is_Some (objects w0 !! o) -> reached o -> exists w' N, visit_object o w = Some w' /\ visited w L w' N /\ o ∈ L ++ N.

Lemma run_visits_spec visit_object : visits_one visit_object -> forall vs w L, marking w L ->
  (forall v y, In v vs -> mentions y v -> is_Some (objects w0 !! y)) ->
  (forall y, In (VISIT y) vs -> reached y) -> (forall k y, In (VISIT_IF_VISITED k y) vs -> reached k -> reached y) ->
  exists w' N, run_visits visit_object vs w = Some w' /\ visited w L w' N
    /\ (forall y, In (VISIT y) vs -> y ∈ L ++ N) /\ (forall k y, In (VISIT_IF_VISITED k y) vs -> k ∈ L -> y ∈ L ++ N).
Proof.
  intros Hone. induction vs as [| v vs IH]; intros w L Hm Hok Hr Hw.
  - exists w, []. split; [reflexivity |]. split; [now apply visited_nil |]. split; intros; easy.
  - assert (Hstep : exists w1 N1, (match v with VISIT o => visit_object o w | VISIT_IF_VISITED k o => if bool_decide (k ∈ L) then visit_object o w else Some w end) = Some w1 /\ visited w L w1 N1
       /\ match v with VISIT o => o ∈ L ++ N1 | VISIT_IF_VISITED k o => k ∈ L -> o ∈ L ++ N1 end).
    { destruct v as [o | k o]; [apply (Hone w L o Hm); [now apply (Hok (VISIT o)); [left |] | apply Hr; now left] |]. destruct (bool_decide_reflect (k ∈ L)) as [Hk | Hk].
      - destruct (Hone w L o Hm) as (w1 & N1 & E1 & V1 & H1); [apply (Hok (VISIT_IF_VISITED k o)); [now left | now right] | apply (Hw k o); [now left |] | exists w1, N1; now splits].
        exact (proj1 (List.Forall_forall _ _) (mk_reached _ _ Hm) k (proj1 (list_elem_of_In _ _) Hk)).
      - exists w, []. split; [reflexivity |]. split; [now apply visited_nil | easy]. }
    destruct Hstep as (w1 & N1 & E1 & V1 & H1).
    destruct (IH w1 (L ++ N1) (vs_marking _ _ _ _ V1)) as (w2 & N2 & E2 & V2 & H2 & H3); [intros u y Hu; apply Hok; now right | intros y Hy; apply Hr; now right | intros k y Hy; apply Hw; now right |].
    exists w2, (N1 ++ N2). split.
    + destruct v as [o | k o]; cbn [run_visits]; [now rewrite E1 |]. rewrite (is_visited_spec w L k Hm) by (apply (Hok (VISIT_IF_VISITED k o)); [now left | now left]). now rewrite E1.
    + split; [exact (visited_trans _ _ _ _ _ _ V1 V2) |]. rewrite !app_assoc. split.
      * intros y [-> | Hy]; [rewrite elem_of_app; now left | now apply H2].
      * intros k y [-> | Hy] Hk; [rewrite elem_of_app; left; now apply H1 | apply (H3 k y Hy); rewrite elem_of_app; now left].
Qed.

Lemma gc_mark_limit_frozen w L : marking w L -> (gc_mark_limit w =? 0) = false.
Proof. intros Hm. apply Z.eqb_neq. now rewrite (frozen_limit _ _ (mk_frozen _ _ Hm)). Qed.

(** Making the visits of an object that is in the list *)
Lemma visits_settle visit_object w L x : visits_one visit_object -> marking w L -> x ∈ L -> is_Some (objects w0 !! x) ->
  exists vs w' N, marks w x = Some vs /\ run_visits visit_object vs w = Some w' /\ visited w L w' N /\ settled (L ++ N) x.
Proof.
  intros Hone Hm Hx Hsome. destruct (Htotal x Hsome) as (vs & Hvs & Hok). pose proof (proj1 (List.Forall_forall _ _) (mk_reached _ _ Hm) x (proj1 (list_elem_of_In _ _) Hx)) as Hr.
  destruct (run_visits_spec visit_object Hone vs w L Hm Hok) as (w' & N & E & Hv & H1 & H2).
  - intros y Hy. apply (reached_visit x y Hr). now exists vs.
  - intros k y Hy Hk. apply (reached_weak x k y Hr Hk). now exists vs.
  - exists vs, w', N. split; [rewrite <- Hvs; apply marks_frozen; exact (mk_frozen _ _ Hm) |]. split; [exact E |]. split; [exact Hv |]. exact (settle w L w' N x vs Hm Hx Hvs Hv Hok H1 H2).
Qed.

Lemma set_visited_spec limit : visits_one (ecma_gc_set_object_visited limit).
Proof.
  induction limit as [| limit IH]; intros w L o Hm Hsome Hr; cbn [ecma_gc_set_object_visited];
    (destruct (frozen_lookup _ _ (mk_frozen _ _ Hm) o) as [[E _] | (b & ob & _ & E & _)]; [rewrite E in Hsome; now destruct Hsome |]); rewrite E;
    (destruct (Z.leb_spec ECMA_OBJECT_NON_VISITED (type_flags_refs ob)) as [Hf | Hf];
      [| exists w, []; split; [reflexivity |]; split; [now apply visited_nil |]; rewrite app_nil_r; exact (visited_flags w L o ob Hm E Hf)]);
    destruct (not_visited_flags w L o ob Hm E Hf) as (Hn & f & Hf0 & Hlow & Ef); rewrite (gc_mark_limit_frozen w L Hm); cbn [negb]; rewrite Ef.
  - rewrite gray_bits by lia. exists (put o (set_refs (f + 32) ob) w), [o]. split; [reflexivity |]. split; [| rewrite elem_of_app; right; now left].
    constructor; [apply (marking_push w L o ob f); auto; lia | constructor; [left | constructor] | |].
    + exists f. split; [exact Hf0 |]. split; [lia |]. unfold flags_of. cbn [put set_objects objects]. now rewrite lookup_insert_eq.
    + intros x Hx. cbn [put set_objects objects]. rewrite lookup_insert_ne; [reflexivity |]. intros ->. apply Hx. now left.
    + intros x. now apply next_put.
  - rewrite black_bits by lia. set (w1 := put o (set_refs f ob) w). assert (M1 : marking w1 (L ++ [o])) by (apply (marking_push w L o ob f); auto; lia).
    destruct (visits_settle _ w1 (L ++ [o]) o IH M1) as (vs & w' & N & Em & E' & Hv & Hs); [rewrite elem_of_app; right; now left | exact Hsome |].
    exists w', (o :: N). rewrite Em, E'. split; [reflexivity |]. destruct Hv as [M' New Same Next]. rewrite <- app_assoc in *. cbn [app] in *. split; [| rewrite elem_of_app; right; now left].
    constructor; [exact M' | constructor; [right; exact Hs | exact New] | |].
    + intros x Hx. rewrite not_elem_of_cons in Hx. rewrite Same by tauto. unfold w1. cbn [put set_objects objects]. rewrite lookup_insert_ne by (intros ->; tauto). reflexivity.
    + intros x. rewrite Next. now apply next_put.
Qed.

Lemma ecma_gc_mark_run w L x : marking w L -> x ∈ L -> is_Some (objects w0 !! x) -> exists w' N, ecma_gc_mark x w = Some w' /\ visited w L w' N /\ settled (L ++ N) x.
Proof.
  intros Hm Hx Hsome. destruct (visits_settle _ w L x (set_visited_spec (recursion_limit w)) Hm Hx Hsome) as (vs & w' & N & Em & E & Hv & Hs). exists w', N. unfold ecma_gc_mark. now rewrite Em, E.
Qed.

(** ** When everything in the list is settled, it is what is reachable *)

Hypothesis Hweak : forall m k y, knows m (VISIT_IF_VISITED k y) -> is_root k \/ knows k (VISIT_IF_VISITED m y).

Lemma order_total (L : list Z) x y : x ∈ L -> y ∈ L -> x = y \/ (exists A B, L = A ++ x :: B /\ y ∈ A) \/ (exists A B, L = A ++ y :: B /\ x ∈ A).
Proof.
  intros Hx Hy. apply list_elem_of_split in Hx as (A & B & ->). rewrite elem_of_app, elem_of_cons in Hy. destruct Hy as [Hy | [-> | Hy]]; [right; left; now exists A, B | now left |].
  right; right. apply list_elem_of_split in Hy as (C & D & ->). exists (A ++ x :: C), D. rewrite <- app_assoc. cbn [app]. split; [reflexivity |]. rewrite elem_of_app, elem_of_cons. tauto.
Qed.

Lemma settled_reached L x : Forall (settled L) L -> (forall r, is_root r -> r ∈ L) -> reached x -> x ∈ L.
Proof.
  intros Hs Hroots Hr. rewrite Forall_forall in Hs. induction Hr as [x Hx | x y Hx IH Hk | m k y Hm IHm Hk IHk Hw]; [now apply Hroots | exact (Hs x IH _ Hk) |].
  destruct (order_total L m k IHm IHk) as [-> | [(A & B & E & Ha) | (A & B & E & Ha)]].
  - apply (Hs k IHk _ Hw). right. now left.
  - apply (Hs m IHm _ Hw). right; right. now exists A, B.
  - destruct (Hweak m k y Hw) as [Hroot | Hw']; [apply (Hs m IHm _ Hw); now left |]. apply (Hs k IHk _ Hw'). right; right. now exists A, B.
Qed.
End Marking.
