(* ===== verification/GcChains.v ===== *)
(** * The chains of the collector

    ecma_gc_run moves objects from the chain of all objects to a black one.  A white chain is
    in two parts, what a pass has left behind and what it has before it; the last object of
    the black chain may still point into the white one. *)
From Stdlib Require Import ZArith Lia Bool List Permutation.
From stdpp Require Import base gmap list.
From S2P Require Import Prelude JmemPointers Values PropNames GcHeap GcMark Gc GcFree GcMarking.
Import ListNotations.
#[local] Open Scope Z_scope.

(** The objects from [p] to the pointer [q], which may be NULL *)
Fixpoint links (w : gworld) (p : Z) (l : list Z) (q : Z) : Prop :=
  match l with
  | [] => p = q
  | x :: l => p = x /\ x <> JMEM_CP_NULL /\ exists n, next_of w x = Some n /\ links w n l q
  end.

Lemma links_app w p l m q : links w p (l ++ m) q <-> exists r, links w p l r /\ links w r m q.
Proof.
  revert p. induction l as [| x l IH]; intros p; cbn [app links]; [split; [now exists p | intros (r & -> & H); exact H] |]. split.
  - intros (-> & Hx & n & Hn & H). apply IH in H as (r & H1 & H2). exists r. split; [| exact H2]. split; [reflexivity |]. split; [exact Hx |]. now exists n.
  - intros (r & (-> & Hx & n & Hn & H1) & H2). split; [reflexivity |]. split; [exact Hx |]. exists n. split; [exact Hn |]. apply IH. now exists r.
Qed.

Lemma links_ext w w' p l q : (forall x, In x l -> next_of w' x = next_of w x) -> links w p l q -> links w' p l q.
Proof.
  revert p. induction l as [| x l IH]; intros p He H; [exact H |]. destruct H as (-> & Hx & n & Hn & H). split; [reflexivity |]. split; [exact Hx |]. exists n. split; [rewrite (He x (or_introl eq_refl)); exact Hn |].
  apply IH; [intros y Hy; apply He; now right | exact H].
Qed.

Lemma links_some w p l q x : links w p l q -> In x l -> is_Some (objects w !! x).
Proof.
  revert p. induction l as [| y l IH]; intros p H Hx; [easy |]. destruct H as (-> & _ & n & Hn & H). destruct Hx as [-> | Hx]; [| exact (IH n H Hx)].
  unfold next_of in Hn. destruct (objects w !! x); [easy | discriminate].
Qed.

Lemma links_nonnull w p l q : links w p l q -> ~ In JMEM_CP_NULL l.
Proof. revert p. induction l as [| y l IH]; intros p H Hin; [easy |]. destruct H as (-> & Hy & n & _ & H). destruct Hin as [Hin | Hin]; [easy | exact (IH n H Hin)]. Qed.

Lemma set_gc_next_run w x next_cp : is_Some (objects w !! x) -> exists w', set_gc_next x next_cp w = Some w' /\ frozen w w' /\ (forall y, flags_of w' y = flags_of w y)
  /\ next_of w' x = Some next_cp /\ (forall y, y <> x -> objects w' !! y = objects w !! y).
Proof.
  intros [ob Hx]. unfold set_gc_next. rewrite Hx. exists (put x (set_next next_cp ob) w). split; [reflexivity |]. split; [apply (frozen_put w x ob); [exact Hx | reflexivity] |].
  unfold flags_of, next_of. cbn [put set_objects objects]. rewrite lookup_insert_eq. split; [| split; [reflexivity | intros y Hy; now rewrite lookup_insert_ne]].
  intros y. destruct (decide (y = x)) as [-> | Hne]; [rewrite lookup_insert_eq, Hx; reflexivity | now rewrite lookup_insert_ne].
Qed.

Lemma links_set_end w w' p l e q r : links w p (l ++ [e]) q -> NoDup (l ++ [e]) -> next_of w' e = Some r -> (forall y, y <> e -> objects w' !! y = objects w !! y) -> links w' p (l ++ [e]) r.
Proof.
  intros H Hnd He Hs. apply links_app in H as (m & H1 & -> & H2 & _). apply links_app. exists e. split; [| split; [reflexivity |]; split; [exact H2 |]; now exists r].
  apply (links_ext w); [| exact H1]. intros x Hx. unfold next_of. rewrite Hs; [reflexivity |]. intros ->. apply NoDup_app in Hnd as (_ & Hd & _). apply (Hd e); [now apply list_elem_of_In | now left].
Qed.

(** ** The two chains *)

Definition white_part (s : gc_state) (prev : option Z) (A B : list Z) (iter : Z) : Prop :=
  prev = last A /\ links (world s) (white_gray_list_head s) A iter /\ links (world s) iter B JMEM_CP_NULL.
Definition black_part (s : gc_state) (Bl : list Z) (q : Z) : Prop := black_end_p s = last Bl /\ links (world s) (black_list_head s) Bl q.

Lemma last_cases (l : list Z) : (l = [] /\ last l = None) \/ exists m e, l = m ++ [e] /\ last l = Some e.
Proof. destruct l as [| e m _] using rev_ind; [left; now split | right]. exists m, e. now rewrite last_snoc. Qed.

(** Linking the end of a part leaves what is apart from it as it was *)
Record relinked (s s' : gc_state) (l : list Z) : Prop := {
  rl_frozen : frozen (world s) (world s');
  rl_flags : forall y, flags_of (world s') y = flags_of (world s) y;
  rl_apart : forall y, ~ In y l -> objects (world s') !! y = objects (world s) !! y
}.

Lemma link_white_run s prev A B iter next_cp : white_part s prev A B iter -> NoDup (A ++ B) -> exists s', link_white prev next_cp s = Some s' /\ relinked s s' A
  /\ links (world s') (white_gray_list_head s') A next_cp /\ black_end_p s' = black_end_p s /\ black_list_head s' = black_list_head s.
Proof.
  intros (-> & HA & HB) Hnd. destruct (last_cases A) as [[-> ->] | (m & e & -> & ->)]; cbn [link_white].
  - eexists. split; [reflexivity |]. cbn. split; [constructor; easy |]. now split.
  - destruct (set_gc_next_run (world s) e next_cp) as (w' & -> & Hfr & Hfl & Hn & Hs).
    { apply (links_some _ _ _ _ e HA). rewrite in_app_iff. right. now left. }
    eexists. split; [reflexivity |]. cbn. split; [constructor; [exact Hfr | exact Hfl |]; intros y Hy; apply Hs; intros ->; apply Hy; rewrite in_app_iff; right; now left |].
    split; [| now split]. apply (links_set_end (world s) w' _ m e iter next_cp HA); [| exact Hn | exact Hs]. apply NoDup_app in Hnd. tauto.
Qed.

Lemma link_black_run s Bl q next_cp : black_part s Bl q -> NoDup Bl -> exists s', link_black next_cp s = Some s' /\ relinked s s' Bl
  /\ black_part s' Bl next_cp /\ white_gray_list_head s' = white_gray_list_head s.
Proof.
  intros (HE & HB) Hnd. unfold link_black. rewrite HE. destruct (last_cases Bl) as [[-> ->] | (m & e & -> & El)].
  - eexists. split; [reflexivity |]. cbn. split; [constructor; easy |]. now split.
  - rewrite El. destruct (set_gc_next_run (world s) e next_cp) as (w' & -> & Hfr & Hfl & Hn & Hs).
    { apply (links_some _ _ _ _ e HB). rewrite in_app_iff. right. now left. }
    eexists. split; [reflexivity |]. cbn. split; [constructor; [exact Hfr | exact Hfl |]; intros y Hy; apply Hs; intros ->; apply Hy; rewrite in_app_iff; right; now left |].
    split; [| reflexivity]. split; [cbn; now rewrite HE, El |]. cbn. exact (links_set_end (world s) w' _ m e q next_cp HB Hnd Hn Hs).
Qed.

Lemma relinked_trans s s1 s2 l l1 : relinked s s1 l -> relinked s1 s2 l1 -> relinked s s2 (l ++ l1).
Proof.
  intros [F1 L1 A1] [F2 L2 A2]. constructor; [now transitivity (world s1) | intros; now rewrite L2 |]. intros y Hy. rewrite in_app_iff in Hy. rewrite A2 by tauto. apply A1. tauto.
Qed.

Lemma relinked_links s s' l p m q : relinked s s' l -> (forall x, In x m -> ~ In x l) -> links (world s) p m q -> links (world s') p m q.
Proof. intros [_ _ Ha] Hd. apply links_ext. intros x Hx. unfold next_of. now rewrite (Ha x (Hd x Hx)). Qed.

(** Moving the next object *)
Lemma move_to_black_run s prev A x B Bl q ob : white_part s prev A (x :: B) x -> black_part s Bl q -> NoDup (A ++ x :: B ++ Bl) -> objects (world s) !! x = Some ob ->
  exists s', move_to_black prev x (gc_next_cp ob) s = Some s' /\ frozen (world s) (world s') /\ (forall y, flags_of (world s') y = flags_of (world s) y)
    /\ white_part s' prev A B (gc_next_cp ob) /\ black_part s' (Bl ++ [x]) (gc_next_cp ob) /\ objects (world s') !! x = Some ob.
Proof.
  intros HW HB Hnd Hx. pose proof HW as (Hprev & HA & _ & Hx0 & n & Hn & HBs). unfold next_of in Hn. rewrite Hx in Hn. cbn in Hn. injection Hn as <-.
  assert (Hd : NoDup A /\ NoDup Bl /\ (forall y, In y A -> ~ In y Bl /\ ~ In y B /\ y <> x) /\ ~ In x Bl /\ (forall y, In y B -> ~ In y Bl)).
  { apply NoDup_app in Hnd as (HndA & Hd1 & Hnd). apply NoDup_cons in Hnd as [Hnx Hnd]. apply NoDup_app in Hnd as (_ & Hd2 & HndBl). split; [exact HndA |]. split; [exact HndBl |].
    rewrite elem_of_app in Hnx. setoid_rewrite elem_of_cons in Hd1. setoid_rewrite elem_of_app in Hd1. setoid_rewrite list_elem_of_In in Hd1. setoid_rewrite list_elem_of_In in Hd2. rewrite !list_elem_of_In in Hnx.
    split; [intros y Hy; specialize (Hd1 y Hy); tauto |]. split; [tauto | exact Hd2]. }
  destruct Hd as (HndA & HndBl & HdA & Hnx & HdB). unfold move_to_black.
  destruct (link_white_run s prev A (x :: B) x (gc_next_cp ob) HW) as (s1 & -> & R1 & HA1 & E1 & E1'); [change (x :: B ++ Bl) with ((x :: B) ++ Bl) in Hnd; rewrite app_assoc in Hnd; apply NoDup_app in Hnd; tauto |].
  assert (HB1 : black_part s1 Bl q) by (destruct HB as [HE HB]; split; [now rewrite E1 | rewrite E1'; apply (relinked_links s s1 A); [exact R1 | intros y Hy Hy'; exact (proj1 (HdA y Hy') Hy) | exact HB]]).
  destruct (link_black_run s1 Bl q x HB1 HndBl) as (s2 & -> & R2 & HB2 & E2). eexists. split; [reflexivity |]. pose proof (relinked_trans _ _ _ _ _ R1 R2) as R. cbn [world].
  split; [exact (rl_frozen _ _ _ R) |]. split; [exact (rl_flags _ _ _ R) |].
  assert (Hx2 : objects (world s2) !! x = Some ob) by (rewrite (rl_apart _ _ _ R); [exact Hx |]; rewrite in_app_iff; intros [H | H]; [destruct (HdA x H) as (_ & _ & H'); exact (H' eq_refl) | easy]).
  split.
  - unfold white_part. cbn [world white_gray_list_head]. split; [exact Hprev |]. rewrite E2. split; [apply (relinked_links s1 s2 Bl); [exact R2 | intros y Hy; apply (HdA y Hy) | exact HA1] |].
    apply (relinked_links s s2 _ _ _ _ R); [| exact HBs]. intros y Hy. rewrite in_app_iff. intros [H | H]; [destruct (HdA y H) as (_ & H' & _); exact (H' Hy) | exact (HdB y Hy H)].
  - split; [| exact Hx2]. destruct HB2 as [_ HB2]. unfold black_part. cbn [world black_end_p black_list_head]. split; [now rewrite last_snoc |]. apply links_app. exists x. split; [exact HB2 |].
    split; [reflexivity |]. split; [exact Hx0 |]. exists (gc_next_cp ob). split; [unfold next_of; now rewrite Hx2 | reflexivity].
Qed.
