(* ===== verification/GcRun.v ===== *)
(** * The marking phase

    The loops of ecma_gc_run up to the sweep: afterwards the black chain has the objects that
    are reached, with their descriptors as before, and the white chain the others. *)
From Stdlib Require Import ZArith Lia Bool List Permutation.
From stdpp Require Import base gmap list.
From S2P Require Import Prelude JmemPointers Values PropNames GcHeap GcMark Gc GcFree GcMarking GcChains.
Import ListNotations.
#[local] Open Scope Z_scope.

(** A heap at rest: all objects are in the chain, no counter is at its limit, what marking
    reads is there, and weak maps and their keys know each other *)
Record heap_ok (w : gworld) (l : list Z) : Prop := {
  hk_chain : links w (ecma_gc_objects_cp w) l JMEM_CP_NULL;
  hk_nodup : NoDup l;
  hk_all : forall x, is_Some (objects w !! x) -> In x l;
  hk_words : forall x f, flags_of w x = Some f -> word_ok f;
  hk_total : forall x, is_Some (objects w !! x) -> exists vs, marks w x = Some vs /\ forall v y, In v vs -> mentions y v -> is_Some (objects w !! y);
  hk_weak : forall m k y, knows w m (VISIT_IF_VISITED k y) -> is_root w k \/ knows w k (VISIT_IF_VISITED m y)
}.

Lemma parts_next s w' : (forall x, next_of w' x = next_of (world s) x) -> forall prev A B iter Bl q, white_part s prev A B iter -> black_part s Bl q ->
  white_part (set_world w' s) prev A B iter /\ black_part (set_world w' s) Bl q.
Proof.
  intros Hn prev A B iter Bl q (Hp & HA & HB) (HE & HBl). split; [split; [exact Hp |]; split | split; [exact HE |]]; cbn [world set_world white_gray_list_head black_list_head]; now apply (links_ext (world s)).
Qed.

Lemma white_step s prev A x B : white_part s prev A (x :: B) x -> forall ob, objects (world s) !! x = Some ob -> white_part s (Some x) (A ++ [x]) B (gc_next_cp ob).
Proof.
  intros (_ & HA & _ & Hx & n & Hn & HB) ob Hob. unfold next_of in Hn. rewrite Hob in Hn. cbn in Hn. injection Hn as <-. split; [now rewrite last_snoc |]. split; [| exact HB].
  apply links_app. exists x. split; [exact HA |]. split; [reflexivity |]. split; [exact Hx |]. exists (gc_next_cp ob). split; [unfold next_of; now rewrite Hob | reflexivity].
Qed.

Lemma white_object s prev A x B iter : white_part s prev A (x :: B) iter -> iter = x /\ x <> JMEM_CP_NULL /\ exists ob, objects (world s) !! x = Some ob.
Proof.
  intros (_ & _ & -> & Hx & n & Hn & _). split; [reflexivity |]. split; [exact Hx |]. unfold next_of in Hn. destruct (objects (world s) !! x) as [ob |]; [now exists ob | discriminate].
Qed.

Lemma perm_move (A B C : list Z) x : Permutation (A ++ x :: B ++ C) (A ++ B ++ C ++ [x]).
Proof. apply Permutation_app_head. rewrite app_assoc. apply Permutation_cons_append. Qed.

Section Run.
Variable w0 : gworld.
Variable l : list Z.
Hypothesis Hheap : heap_ok w0 l.
Hypothesis Hlimit : gc_mark_limit w0 <> 0.

(** ** Roots *)

Definition root_word (f : Z) : Z := if 32 <=? f then f else f + ECMA_OBJECT_NON_VISITED.

Record sorting (s : gc_state) (A B Bl : list Z) : Prop := {
  so_frozen : frozen w0 (world s);
  so_perm : Permutation l (A ++ B ++ Bl);
  so_flags : forall x f, flags_of w0 x = Some f -> flags_of (world s) x = Some (if decide (x ∈ B) then f else root_word f);
  so_white : Forall (fun x => ~ is_root w0 x) A;
  so_black : Forall (is_root w0) Bl
}.

Lemma sorting_nodup s A B Bl : sorting s A B Bl -> NoDup (A ++ B ++ Bl).
Proof. intros [_ Hp _ _ _]. rewrite <- Hp. exact (hk_nodup _ _ Hheap). Qed.

Lemma initial_flags x ob w : frozen w0 w -> objects w !! x = Some ob -> exists f, flags_of w0 x = Some f /\ word_ok f.
Proof.
  intros Hf Hx. destruct (frozen_lookup _ _ Hf x) as [[_ E] | (b & _ & Eb & _)]; [congruence |]. exists (type_flags_refs b).
  assert (E : flags_of w0 x = Some (type_flags_refs b)) by (unfold flags_of; now rewrite Eb). split; [exact E | exact (hk_words _ _ Hheap x _ E)].
Qed.

Lemma move_roots_run B : forall fuel prev A iter Bl q s, (length B <= fuel)%nat -> white_part s prev A B iter -> black_part s Bl q -> sorting s A B Bl ->
  exists s' A' Bl' q' prev' iter', move_roots fuel prev iter s = Some s' /\ white_part s' prev' A' [] iter' /\ black_part s' Bl' q' /\ sorting s' A' [] Bl'.
Proof.
  induction B as [| x B IH]; intros fuel prev A iter Bl q s Hfuel HW HB HS.
  - assert (Hi : iter = JMEM_CP_NULL) by (destruct HW as (_ & _ & Hi); exact Hi). subst iter. exists s, A, Bl, q, prev, JMEM_CP_NULL. split; [destruct fuel; reflexivity | now splits].
  - destruct (white_object _ _ _ _ _ _ HW) as (-> & Hx0 & ob & Hx). destruct fuel as [| fuel]; [cbn in Hfuel; lia |]. cbn [move_roots]. rewrite (proj2 (Z.eqb_neq _ _) Hx0), Hx.
    pose proof (sorting_nodup _ _ _ _ HS) as Hnd. destruct HS as [Hfr Hp Hfl HwA HrB]. destruct (initial_flags x ob _ Hfr Hx) as (f & Hf & Hword).
    assert (Eob : type_flags_refs ob = f). { pose proof (Hfl x f Hf) as H. unfold flags_of in H. rewrite Hx, decide_True in H by now left. cbn in H. now injection H. }
    assert (Hnx : x ∉ B) by (apply NoDup_app in Hnd as (_ & _ & Hnd); apply NoDup_cons in Hnd as [Hnx _]; rewrite elem_of_app in Hnx; tauto).
    rewrite Eob. change ECMA_OBJECT_REF_ONE with 32. destruct (Z.leb_spec 32 f) as [Hroot | Hroot].
    + destruct (move_to_black_run s prev A x B Bl q ob HW HB Hnd Hx) as (s1 & -> & Hfr1 & Hfl1 & HW1 & HB1 & _).
      apply (IH fuel prev A (gc_next_cp ob) (Bl ++ [x]) (gc_next_cp ob) s1); [cbn in Hfuel; lia | exact HW1 | exact HB1 |]. constructor; [now transitivity (world s) | | | exact HwA |].
      * rewrite Hp. apply perm_move.
      * intros y fy Hy. rewrite Hfl1, (Hfl y fy Hy). f_equal. destruct (decide (y ∈ B)) as [H | H]; [now rewrite decide_True by now right |]. destruct (decide (y ∈ x :: B)) as [H' | H']; [| reflexivity].
        apply elem_of_cons in H' as [-> | H']; [| easy]. rewrite Hf in Hy. injection Hy as <-. unfold root_word. now rewrite (proj2 (Z.leb_le _ _) Hroot).
      * apply Forall_app. split; [exact HrB |]. constructor; [now exists f | constructor].
    + set (w1 := put x (set_refs (Z.lor f ECMA_OBJECT_NON_VISITED) ob) (world s)). assert (Hn1 : forall y, next_of w1 y = next_of (world s) y) by (intros y; now apply next_put).
      pose proof (white_step s prev A x B HW ob Hx) as HW1. destruct (parts_next s w1 Hn1 _ _ _ _ _ _ HW1 HB) as [HW2 HB2].
      apply (IH fuel (Some x) (A ++ [x]) (gc_next_cp ob) Bl q (set_world w1 s)); [cbn in Hfuel; lia | exact HW2 | exact HB2 |]. constructor; [| now rewrite <- app_assoc | | | exact HrB].
      * cbn [world set_world]. transitivity (world s); [exact Hfr |]. apply (frozen_put _ x ob); [exact Hx | reflexivity].
      * intros y fy Hy. cbn [world set_world]. unfold flags_of, w1. cbn [put set_objects objects]. destruct (decide (y = x)) as [-> | Hne].
        -- rewrite lookup_insert_eq, decide_False by exact Hnx. cbn. rewrite Hf in Hy. injection Hy as <-. unfold root_word. rewrite (proj2 (Z.leb_gt _ _) Hroot). f_equal. apply whiten_bits. unfold word_ok in Hword. lia.
        -- rewrite lookup_insert_ne by congruence. pose proof (Hfl y fy Hy) as H. unfold flags_of in H. rewrite H. f_equal. destruct (decide (y ∈ B)) as [H1 | H1]; [now rewrite decide_True by now right |].
           rewrite decide_False; [reflexivity |]. rewrite elem_of_cons. tauto.
      * apply Forall_app. split; [exact HwA |]. constructor; [| constructor]. intros (f' & Hf' & H). rewrite Hf in Hf'. injection Hf' as <-. lia.
Qed.

(** ** The marks of the roots *)

Abbreviation marking := (marking w0).
Abbreviation visited := (visited w0).
Abbreviation settled := (settled w0).
Abbreviation gray := (gray w0).

Lemma marking_start s A Bl : sorting s A [] Bl -> marking (world s) Bl /\ forall x, is_root w0 x -> x ∈ Bl.
Proof.
  intros HS. pose proof (sorting_nodup _ _ _ _ HS) as Hnd. destruct HS as [Hfr Hp Hfl HwA HrB]. cbn [app] in *.
  assert (Hin : forall x f, flags_of w0 x = Some f -> x ∈ Bl <-> 32 <= f).
  { intros x f Hf. rewrite Forall_forall in HwA. rewrite Forall_forall in HrB. split.
    - intros H. destruct (HrB x H) as (f' & Hf' & H'). rewrite Hf in Hf'. now injection Hf' as <-.
    - intros H. assert (Hx : In x l) by (apply (hk_all _ _ Hheap); unfold flags_of in Hf; destruct (objects w0 !! x); [easy | discriminate]).
      apply list_elem_of_In in Hx. rewrite Hp, elem_of_app in Hx. destruct Hx as [Hx | Hx]; [exfalso; apply (HwA x Hx); now exists f | exact Hx]. }
  split; [constructor; [exact Hfr | | apply NoDup_app in Hnd; tauto |] |].
  - intros x f Hf. unfold descriptor. pose proof (Hfl x f Hf) as H. rewrite decide_False in H by (intros H'; inversion H'). unfold root_word in H. specialize (Hin x f Hf). destruct (Z.leb_spec 32 f); [now split; [| apply Hin] |].
    rewrite decide_False; [exact H |]. rewrite Hin. lia.
  - apply (Forall_impl _ _ _ HrB). intros x Hx. now apply reached_root.
  - intros x (f & Hf & H). now apply (Hin x f Hf).
Qed.

Lemma mark_roots_run Bl2 : forall fuel iter w L, (length Bl2 <= fuel)%nat -> links w iter Bl2 JMEM_CP_NULL -> marking w L -> (forall x, In x Bl2 -> x ∈ L) ->
  exists w' N, mark_roots fuel iter w = Some w' /\ visited w L w' N /\ (forall x, In x Bl2 -> settled (L ++ N) x).
Proof.
  induction Bl2 as [| x Bl2 IH]; intros fuel iter w L Hfuel Hl Hm Hin.
  - cbn in Hl. subst iter. exists w, []. split; [destruct fuel; reflexivity |]. split; [now apply visited_nil | easy].
  - destruct Hl as (-> & Hx0 & n & Hn & Hl). destruct fuel as [| fuel]; [cbn in Hfuel; lia |]. cbn [mark_roots]. rewrite (proj2 (Z.eqb_neq _ _) Hx0).
    assert (Hsome : is_Some (objects w0 !! x)).
    { destruct (frozen_lookup _ _ (mk_frozen _ _ _ Hm) x) as [[_ E] | (b & _ & E & _)]; [unfold next_of in Hn; rewrite E in Hn; discriminate | now exists b]. }
    destruct (ecma_gc_mark_run w0 (hk_words _ _ Hheap) (hk_total _ _ Hheap) Hlimit w L x Hm (Hin x (or_introl eq_refl)) Hsome) as (w1 & N1 & -> & V1 & S1).
    pose proof (vs_next _ _ _ _ _ V1) as Hn1. pose proof (Hn1 x) as Hx. rewrite Hn in Hx. unfold next_of in Hx. destruct (objects w1 !! x) as [ob |]; [| discriminate]. cbn in Hx. injection Hx as ->.
    destruct (IH fuel n w1 (L ++ N1)) as (w2 & N2 & E2 & V2 & S2); [cbn in Hfuel; lia | apply (links_ext w); [intros; apply Hn1 | exact Hl] | exact (vs_marking _ _ _ _ _ V1) | |].
    + intros y Hy. rewrite elem_of_app. left. apply Hin. now right.
    + exists w2, (N1 ++ N2). split; [exact E2 |]. split; [exact (visited_trans w0 _ _ _ _ _ _ V1 V2) |]. rewrite app_assoc. intros y [<- | Hy]; [| now apply S2].
      apply settled_app; [exact (mk_nodup _ _ _ (vs_marking _ _ _ _ _ V2)) | rewrite elem_of_app; left; apply Hin; now left | exact S1].
Qed.

(** ** The passes *)

(** [L]: the objects visited so far *)
Record passing (s : gc_state) (A B Bl L : list Z) : Prop := {
  pa_marking : marking (world s) L;
  pa_perm : Permutation l (A ++ B ++ Bl);
  pa_black : forall x, In x Bl -> x ∈ L /\ settled L x /\ ~ gray (world s) x;
  pa_roots : forall x, is_root w0 x -> In x Bl;
  pa_state : forall x, x ∈ L -> gray (world s) x \/ settled L x
}.

Lemma marking_ungray w L x ob f : marking w L -> objects w !! x = Some ob -> x ∈ L -> flags_of w0 x = Some f -> f < 32 -> marking (put x (set_refs f ob) w) L.
Proof.
  intros Hm Hx Hin Hf Hlow. constructor; [| | exact (mk_nodup _ _ _ Hm) | exact (mk_reached _ _ _ Hm)].
  - transitivity w; [exact (mk_frozen _ _ _ Hm) |]. apply (frozen_put w x ob); [exact Hx | reflexivity].
  - intros y fy Hy. pose proof (mk_words _ _ _ Hm y fy Hy) as H. unfold descriptor, flags_of in *. cbn [put set_objects objects]. destruct (decide (y = x)) as [-> | Hne]; [| now rewrite lookup_insert_ne by congruence].
    rewrite lookup_insert_eq. cbn. rewrite Hf in Hy. injection Hy as <-. rewrite (proj2 (Z.leb_gt _ _)) by lia. rewrite decide_True by exact Hin. now left.
Qed.

Lemma passing_extend s s' A B x Bl L N w1 : passing s A (x :: B) Bl L -> world s' = w1 -> (exists w, marking w L /\ (forall y, y <> x -> gray (world s) y <-> gray w y) /\ ~ gray w x /\ visited w L w1 N /\ settled (L ++ N) x) -> x ∈ L ->
  passing s' A B (Bl ++ [x]) (L ++ N).
Proof.
  intros [Hm Hp Hbl Hr Hst] Ew (w & Hmw & Hg & Hgx & V & Sx) Hx. pose proof (vs_marking _ _ _ _ _ V) as M1. pose proof (mk_nodup _ _ _ M1) as Hnd.
  assert (Hsame : forall y, y ∈ L -> objects w1 !! y = objects w !! y).
  { intros y Hy. apply (vs_same _ _ _ _ _ V). intros H'. apply NoDup_app in Hnd as (_ & Hd & _). exact (Hd y Hy H'). }
  constructor; rewrite ?Ew.
  - exact M1.
  - rewrite Hp. apply perm_move.
  - intros y Hy. rewrite in_app_iff in Hy. assert (Hback : forall z, z ∈ L -> gray w1 z -> gray w z) by (intros z Hz; apply gray_same; symmetry; now apply Hsame).
    destruct Hy as [Hy | [<- | []]]; [| split; [rewrite elem_of_app; now left | split; [exact Sx | intros H; now apply Hgx, Hback]]]. destruct (Hbl y Hy) as (H1 & H2 & H3). split; [rewrite elem_of_app; now left |]. split; [now apply settled_app |].
    intros H. apply Hback in H; [| exact H1]. destruct (decide (y = x)) as [-> | Hne]; [exact (Hgx H) | now apply H3, (Hg y Hne)].
  - intros y Hy. rewrite in_app_iff. left. now apply Hr.
  - intros y Hy. rewrite elem_of_app in Hy. destruct Hy as [Hy | Hy].
    + destruct (decide (y = x)) as [-> | Hne]; [now right |]. destruct (Hst y Hy) as [H | H]; [left | right; now apply settled_app]. apply (gray_same w0 w w1 y); [now apply Hsame | now apply (Hg y Hne)].
    + exact (proj1 (Forall_forall _ _) (vs_new _ _ _ _ _ V) y Hy).
Qed.

Lemma marking_frozen w w' L : marking w L -> frozen w w' -> (forall y, flags_of w' y = flags_of w y) -> marking w' L.
Proof.
  intros [F W D R] Hfr Hfl. constructor; [now transitivity w | | exact D | exact R]. intros x f Hf. specialize (W x f Hf). unfold descriptor in *. now rewrite !Hfl.
Qed.

Lemma gray_flags w w' x : (forall y, flags_of w' y = flags_of w y) -> gray w' x <-> gray w x.
Proof. intros H. split; intros (f & H1 & H2 & H3); exists f; rewrite ?H in *; now splits. Qed.

Lemma move_visited_run B : forall fuel prev A iter Bl q marked s L, (length B <= fuel)%nat -> white_part s prev A B iter -> black_part s Bl q -> passing s A B Bl L ->
  exists s' A' Bl' L' q' prev' iter' marked', move_visited fuel prev iter marked s = Some (s', marked') /\ white_part s' prev' A' [] iter' /\ black_part s' Bl' q' /\ passing s' A' [] Bl' L'
    /\ (length A' <= length A + length B)%nat /\ (marked = true -> marked' = true) /\ (marked = false -> marked' = true -> length A' < length A + length B)%nat
    /\ (marked' = false -> (forall x, In x A -> x ∉ L) -> forall x, In x A' -> x ∉ L').
Proof.
  induction B as [| x B IH]; intros fuel prev A iter Bl q marked s L Hfuel HW HB HP.
  - assert (Hi : iter = JMEM_CP_NULL) by (destruct HW as (_ & _ & Hi); exact Hi). subst iter. exists s, A, Bl, L, q, prev, JMEM_CP_NULL, marked. split; [destruct fuel; reflexivity |].
    repeat (split; [first [assumption | lia | easy] |]). split; [intros -> [=] | easy].
  - destruct (white_object _ _ _ _ _ _ HW) as (-> & Hx0 & ob & Hx). destruct fuel as [| fuel]; [cbn in Hfuel; lia |]. cbn [move_visited]. rewrite (proj2 (Z.eqb_neq _ _) Hx0), Hx. unfold ecma_gc_is_object_visited.
    pose proof (pa_marking _ _ _ _ _ HP) as Hm. destruct (initial_flags x ob _ (mk_frozen _ _ _ Hm) Hx) as (f & Hf & Hword). pose proof (mk_words _ _ _ Hm x f Hf) as Hd.
    assert (Hnd : NoDup (A ++ x :: B ++ Bl)) by (rewrite <- (pa_perm _ _ _ _ _ HP); exact (hk_nodup _ _ Hheap)).
    assert (Hlow : f < 32).
    { destruct (Z.lt_ge_cases f 32) as [H | H]; [exact H | exfalso]. assert (Hbl : In x Bl) by (apply (pa_roots _ _ _ _ _ HP); now exists f). apply NoDup_app in Hnd as (_ & _ & Hnd). apply NoDup_cons in Hnd as [Hnd _].
      apply Hnd. rewrite elem_of_app. right. now apply list_elem_of_In. }
    unfold descriptor, flags_of in Hd. rewrite Hx, (proj2 (Z.leb_gt _ _) Hlow) in Hd. cbn in Hd.
    destruct (Z.ltb_spec (type_flags_refs ob) ECMA_OBJECT_NON_VISITED) as [Hv | Hv].
    + pose proof (visited_flags w0 (hk_words _ _ Hheap) _ L x ob Hm Hx Hv) as HxL. rewrite decide_True in Hd by exact HxL.
      destruct (move_to_black_run s prev A x B Bl q ob HW HB Hnd Hx) as (s1 & -> & Hfr1 & Hfl1 & HW1 & HB1 & Hx1). pose proof (marking_frozen _ _ L Hm Hfr1 Hfl1) as Hm1.
      rewrite (gc_mark_limit_frozen w0 Hlimit _ L Hm1), Hx1. cbn [negb]. change ECMA_OBJECT_REF_ONE with 32. destruct (Z.leb_spec 32 (type_flags_refs ob)) as [Hg | Hg].
      * assert (Eob : type_flags_refs ob = f + 32) by (destruct Hd as [[= Hd] | [= Hd]]; [lia | exact Hd]). rewrite Eob. change (32 - 1) with (ECMA_OBJECT_REF_ONE - 1). rewrite ungray_bits by (unfold word_ok in Hword; lia).
        set (w2 := put x (set_refs f ob) (world s1)). assert (Hm2 : marking w2 L) by (now apply marking_ungray).
        assert (Hsome : is_Some (objects w0 !! x)) by (unfold flags_of in Hf; destruct (objects w0 !! x); [easy | discriminate]).
        destruct (ecma_gc_mark_run w0 (hk_words _ _ Hheap) (hk_total _ _ Hheap) Hlimit w2 L x Hm2 HxL Hsome) as (w3 & N & -> & V & Sx).
        assert (Hn3 : forall y, next_of w3 y = next_of (world s1) y) by (intros y; rewrite (vs_next _ _ _ _ _ V); now apply next_put). destruct (parts_next s1 w3 Hn3 _ _ _ _ _ _ HW1 HB1) as [HW3 HB3].
        destruct (IH fuel prev A (gc_next_cp ob) (Bl ++ [x]) (gc_next_cp ob) true (set_world w3 s1) (L ++ N)) as (s' & A' & Bl' & L' & q' & prev' & iter' & marked' & E & H1 & H2 & H3 & H4 & H5 & H6 & H7);
          [cbn in Hfuel; lia | exact HW3 | exact HB3 | |].
        { apply (passing_extend s (set_world w3 s1) A B x Bl L N w3 HP eq_refl); [| exact HxL]. exists w2. split; [exact Hm2 |]. split; [| split; [| now split]].
          - intros y Hne. rewrite <- (gray_flags (world s) (world s1) y Hfl1). assert (E : objects w2 !! y = objects (world s1) !! y) by (unfold w2; cbn [put set_objects objects]; now rewrite lookup_insert_ne by congruence).
            split; apply gray_same; congruence.
          - intros (f' & Hf' & _ & H). rewrite Hf in Hf'. injection Hf' as <-. unfold flags_of, w2 in H. cbn [put set_objects objects] in H. rewrite lookup_insert_eq in H. cbn in H. injection H. lia. }
        exists s', A', Bl', L', q', prev', iter', marked'. specialize (H5 eq_refl). subst marked'. split; [exact E |]. cbn [length]. splits; try assumption; try lia; easy.
      * destruct (IH fuel prev A (gc_next_cp ob) (Bl ++ [x]) (gc_next_cp ob) marked s1 (L ++ [])) as (s' & A' & Bl' & L' & q' & prev' & iter' & marked' & E & H1 & H2 & H3 & H4 & H5 & H6 & H7);
          [cbn in Hfuel; lia | exact HW1 | exact HB1 | |].
        { apply (passing_extend s s1 A B x Bl L [] (world s1) HP eq_refl); [| exact HxL]. exists (world s1). split; [exact Hm1 |].
          assert (Hgx : ~ gray (world s) x) by (intros (f' & Hf' & _ & H); rewrite Hf in Hf'; injection Hf' as <-; unfold flags_of in H; rewrite Hx in H; cbn in H; injection H; unfold word_ok in Hword; lia).
          split; [intros y _; symmetry; now apply gray_flags |]. split; [now rewrite (gray_flags (world s)) |]. split; [now apply visited_nil |]. rewrite app_nil_r.
          destruct (pa_state _ _ _ _ _ HP x HxL) as [H | H]; [easy | exact H]. }
        rewrite app_nil_r in H7. exists s', A', Bl', L', q', prev', iter', marked'. cbn [length]. split; [exact E |]. splits; try assumption; lia.
    + destruct (not_visited_flags w0 (hk_words _ _ Hheap) _ L x ob Hm Hx Hv) as [HxL _]. pose proof (white_step s prev A x B HW ob Hx) as HW1.
      destruct (IH fuel (Some x) (A ++ [x]) (gc_next_cp ob) Bl q marked s L) as (s' & A' & Bl' & L' & q' & prev' & iter' & marked' & E & H1 & H2 & H3 & H4 & H5 & H6 & H7);
        [cbn in Hfuel; lia | exact HW1 | exact HB | destruct HP; constructor; try assumption; now rewrite <- app_assoc |].
      rewrite length_app in *. cbn [length] in *. exists s', A', Bl', L', q', prev', iter', marked'. split; [exact E |]. splits; try assumption; try lia; [intros Ef Et; specialize (H6 Ef Et); lia |]. intros Ef Hn. apply (H7 Ef). intros y Hy. rewrite in_app_iff in Hy. destruct Hy as [Hy | [<- | []]]; [now apply Hn | exact HxL].
Qed.


Lemma mark_rest_run : forall passes s W Bl q L, (length W < passes)%nat -> links (world s) (white_gray_list_head s) W JMEM_CP_NULL -> black_part s Bl q -> passing s [] W Bl L ->
  exists s' W' Bl' q' L', mark_rest passes s = Some s' /\ links (world s') (white_gray_list_head s') W' JMEM_CP_NULL /\ black_part s' Bl' q' /\ passing s' W' [] Bl' L' /\ (forall x, In x W' -> x ∉ L').
Proof.
  induction passes as [| passes IH]; intros s W Bl q L Hpasses HW HB HP; [lia |]. cbn [mark_rest].
  assert (Hsize : (length W <= S (size (objects (world s))))%nat).
  { assert (Hnd : NoDup W) by (pose proof (hk_nodup _ _ Hheap) as H; rewrite (pa_perm _ _ _ _ _ HP) in H; cbn [app] in H; apply NoDup_app in H; tauto).
    rewrite <- size_dom. rewrite <- (size_list_to_set W (C := gset Z)) by exact Hnd. apply le_S, subseteq_size. intros x Hx. apply elem_of_list_to_set in Hx. apply elem_of_dom. apply (links_some _ _ _ _ x HW). now apply list_elem_of_In. }
  destruct (move_visited_run W (S (size (objects (world s)))) None [] (white_gray_list_head s) Bl q false s L Hsize) as (s' & A' & Bl' & L' & q' & prev' & iter' & marked' & -> & (Hprev & HA & HN) & H2 & H3 & H4 & _ & H6 & H7); [split; [reflexivity |]; split; [reflexivity | exact HW] | exact HB | exact HP |].
  cbn [links] in HN. subst iter'. destruct marked'.
  - specialize (H6 eq_refl eq_refl). cbn [length] in H6. apply (IH s' A' Bl' q' L'); [lia | exact HA | exact H2 |]. destruct H3 as [M Pm Bk R St]. now constructor.
  - exists s', A', Bl', q', L'. split; [reflexivity |]. split; [exact HA |]. split; [exact H2 |]. split; [exact H3 |]. apply (H7 eq_refl). easy.
Qed.

(** ** The marking phase sorts the objects into the reached and the others *)

Lemma flags_back w L x : marking w L -> x ∈ L -> ~ gray w x -> flags_of w x = flags_of w0 x.
Proof.
  intros Hm Hx Hg. destruct (frozen_lookup _ _ (mk_frozen _ _ _ Hm) x) as [[E1 E2] | (b & ob & E1 & E2 & _)]; [unfold flags_of; now rewrite E1, E2 |].
  assert (Hf : flags_of w0 x = Some (type_flags_refs b)) by (unfold flags_of; now rewrite E1). rewrite Hf. pose proof (mk_words _ _ _ Hm x _ Hf) as H. unfold descriptor in H.
  destruct (Z.leb_spec 32 (type_flags_refs b)); [now destruct H |]. rewrite decide_True in H by exact Hx. destruct H as [H | H]; [exact H | exfalso; apply Hg; now exists (type_flags_refs b)].
Qed.

Record marked (s : gc_state) (W Bl : list Z) : Prop := {
  ma_black : links (world s) (black_list_head s) Bl JMEM_CP_NULL;
  ma_white : links (world s) (white_gray_list_head s) W JMEM_CP_NULL;
  ma_perm : Permutation l (W ++ Bl);
  ma_frozen : frozen w0 (world s);
  ma_reached : forall x, In x Bl -> reached w0 x /\ flags_of (world s) x = flags_of w0 x;
  ma_rest : forall x, In x W -> ~ reached w0 x
}.

Lemma chain_length w A p q : links w p A q -> NoDup A -> (length A <= size (objects w))%nat.
Proof.
  intros Hl Hnd. rewrite <- size_dom. rewrite <- (size_list_to_set A (C := gset Z)) by exact Hnd. apply subseteq_size. intros x Hx. apply elem_of_list_to_set in Hx. apply elem_of_dom.
  apply (links_some _ _ _ _ x Hl). now apply list_elem_of_In.
Qed.

Lemma mark_loops_run : exists s W Bl, mark_loops w0 = Some s /\ marked s W Bl.
Proof.
  unfold mark_loops. pose proof (chain_length w0 l _ _ (hk_chain _ _ Hheap) (hk_nodup _ _ Hheap)) as Hlen.
  destruct (move_roots_run l (chain_fuel w0) None [] (ecma_gc_objects_cp w0) [] JMEM_CP_NULL (mk_gc_state w0 JMEM_CP_NULL None (ecma_gc_objects_cp w0))) as (s1 & A & Bl & q & prev & iter & -> & HW & HB & HS).
  { unfold chain_fuel. lia. }
  { split; [reflexivity |]. split; [reflexivity | exact (hk_chain _ _ Hheap)]. }
  { split; reflexivity. }
  { constructor; [reflexivity | cbn; now rewrite app_nil_r | | constructor | constructor]. intros x f Hf. cbn [world]. rewrite Hf, decide_True; [reflexivity |].
    apply list_elem_of_In, (hk_all _ _ Hheap). unfold flags_of in Hf. destruct (objects w0 !! x); [easy | discriminate]. }
  pose proof (sorting_nodup _ _ _ _ HS) as Hnd. cbn [app] in Hnd. assert (Hdisj : forall x, In x A -> ~ In x Bl) by (intros x; rewrite <- !list_elem_of_In; apply NoDup_app in Hnd as (_ & Hd & _); apply Hd).
  destruct (link_black_run s1 Bl q JMEM_CP_NULL HB) as (s2 & -> & R2 & HB2 & Ew2); [apply NoDup_app in Hnd; tauto |].
  assert (HS2 : sorting s2 A [] Bl).
  { destruct HS as [F P Fl Wh Bk]. constructor; try assumption; [transitivity (world s1); [exact F | exact (rl_frozen _ _ _ R2)] |]. intros x f Hf. rewrite (rl_flags _ _ _ R2). now apply Fl. }
  destruct (marking_start s2 A Bl HS2) as [Hm2 Hroots]. destruct HW as (_ & HA & HN). cbn [links] in HN. subst iter.
  assert (HA2 : links (world s2) (white_gray_list_head s2) A JMEM_CP_NULL) by (rewrite Ew2; apply (relinked_links s1 s2 Bl); [exact R2 | exact Hdisj | exact HA]).
  assert (Hlens : (length A + length Bl = length l)%nat) by (rewrite (Permutation_length (so_perm _ _ _ _ HS)), !length_app; reflexivity).
  destruct (mark_roots_run Bl (chain_fuel w0) (black_list_head s2) (world s2) Bl) as (w3 & N & -> & V & Hset); [unfold chain_fuel; lia | exact (proj2 HB2) | exact Hm2 | intros x Hx; now apply list_elem_of_In |].
  destruct (parts_next s2 w3 (vs_next _ _ _ _ _ V) None [] A (white_gray_list_head s2) Bl JMEM_CP_NULL) as [HW3 HB3]; [split; [reflexivity |]; split; [reflexivity | exact HA2] | exact HB2 |].
  pose proof (vs_marking _ _ _ _ _ V) as Hm3. destruct (mark_rest_run (chain_fuel w0) (set_world w3 s2) A Bl JMEM_CP_NULL (Bl ++ N)) as (s4 & W & Bl4 & q4 & L & -> & HW4 & HB4 & HP & Hn).
  { unfold chain_fuel. lia. }
  { exact (proj2 (proj2 HW3)). }
  { exact HB3. }
  { constructor; [exact Hm3 | exact (so_perm _ _ _ _ HS2) | | intros x Hx; now apply list_elem_of_In, Hroots |].
    - intros x Hx. split; [rewrite elem_of_app; left; now apply list_elem_of_In |]. split; [now apply Hset |]. intros (f & Hf & Hlow & _). pose proof (so_black _ _ _ _ HS2) as Hbk. rewrite Forall_forall in Hbk.
      destruct (Hbk x (proj2 (list_elem_of_In _ _) Hx)) as (f' & Hf' & H). rewrite Hf in Hf'. injection Hf' as <-. lia.
    - intros x Hx. rewrite elem_of_app in Hx. destruct Hx as [Hx | Hx]; [right; apply Hset; now apply list_elem_of_In | exact (proj1 (Forall_forall _ _) (vs_new _ _ _ _ _ V) x Hx)]. }
  pose proof (pa_perm _ _ _ _ _ HP) as Hperm. cbn [app] in Hperm. assert (Hnd4 : NoDup (W ++ Bl4)) by (rewrite <- Hperm; exact (hk_nodup _ _ Hheap)).
  assert (Hdisj4 : forall x, In x W -> ~ In x Bl4) by (intros x; rewrite <- !list_elem_of_In; apply NoDup_app in Hnd4 as (_ & Hd & _); apply Hd).
  destruct (link_black_run s4 Bl4 q4 JMEM_CP_NULL HB4) as (s5 & -> & R5 & HB5 & Ew5); [apply NoDup_app in Hnd4; tauto |].
  pose proof (pa_marking _ _ _ _ _ HP) as Hm4.
  assert (HL : forall x, x ∈ L -> In x Bl4).
  { intros x Hx. assert (Hin : In x l).
    { apply (hk_all _ _ Hheap). destruct (pa_state _ _ _ _ _ HP x Hx) as [(f & Hf & _) | _]; [unfold flags_of in Hf; destruct (objects w0 !! x); [easy | discriminate] |].
      pose proof (proj1 (Forall_forall _ _) (mk_reached _ _ _ Hm4) x Hx) as Hr. destruct Hr as [x (f & Hf & _) | x y _ (vs & Hvs & Hy) | m k y _ _ (vs & Hvs & Hy)].
      - unfold flags_of in Hf. destruct (objects w0 !! x); [easy | discriminate].
      - unfold marks in Hvs. destruct (objects w0 !! x) as [b |] eqn:Eb; [| discriminate]. destruct (hk_total _ _ Hheap x ltac:(now rewrite Eb)) as (vs' & Hvs' & Ht). unfold marks in Hvs'. rewrite Eb, Hvs in Hvs'. injection Hvs' as <-. now apply (Ht (VISIT y) y Hy).
      - unfold marks in Hvs. destruct (objects w0 !! m) as [b |] eqn:Eb; [| discriminate]. destruct (hk_total _ _ Hheap m ltac:(now rewrite Eb)) as (vs' & Hvs' & Ht). unfold marks in Hvs'. rewrite Eb, Hvs in Hvs'. injection Hvs' as <-. apply (Ht (VISIT_IF_VISITED k y) y Hy). now right. }
    apply list_elem_of_In in Hin. rewrite Hperm, elem_of_app in Hin. destruct Hin as [Hin | Hin]; [exfalso; apply (Hn x); [now apply list_elem_of_In | exact Hx] | now apply list_elem_of_In]. }
  exists s5, W, Bl4. split; [reflexivity |]. constructor.
  - exact (proj2 HB5).
  - rewrite Ew5. apply (relinked_links s4 s5 Bl4); [exact R5 | exact Hdisj4 | exact HW4].
  - exact Hperm.
  - transitivity (world s4); [exact (mk_frozen _ _ _ Hm4) | exact (rl_frozen _ _ _ R5)].
  - intros x Hx. destruct (pa_black _ _ _ _ _ HP x Hx) as (HxL & _ & Hg). split; [exact (proj1 (Forall_forall _ _) (mk_reached _ _ _ Hm4) x HxL) |]. rewrite (rl_flags _ _ _ R5). now apply (flags_back _ L).
  - intros x Hx Hr. apply (Hn x Hx). apply (settled_reached w0 (hk_weak _ _ Hheap) L x); [| | exact Hr].
    + apply Forall_forall. intros y Hy. apply (pa_black _ _ _ _ _ HP y). now apply HL.
    + intros r Hr'. apply (pa_black _ _ _ _ _ HP r). now apply (pa_roots _ _ _ _ _ HP).
Qed.
End Run.
