(* ===== verification/GcSweep.v ===== *)
(** * Releasing an object takes it out of what knows it

    Weak containers and weak references are known to the objects they hold, so that the
    release of either side updates the other.  [clean u] is an object after the object of the
    value [u] is gone; releasing objects leaves the others clean, and never touches an object
    that is released already. *)
From Stdlib Require Import ZArith Lia Bool List.
From stdpp Require Import base gmap list.
From S2P Require Import Prelude JmemPointers Values PropNames GcHeap GcMark Gc GcFree.
Import ListNotations.
#[local] Open Scope Z_scope.

Abbreviation value_of := ecma_value_of_object.
Abbreviation EMPTY := ECMA_VALUE_EMPTY.

Lemma value_word x : 0 < x < 536870912 -> value_of x = 8 * x + 3.
Proof.
  intros H. unfold ecma_value_of_object, ECMA_VALUE_SHIFT, ECMA_TYPE_OBJECT. rewrite Z.shiftl_mul_pow2 by lia. rewrite u32_small by (unfold is_u32; change (2 ^ 3) with 8; lia).
  rewrite lor_mul_low by (change (2 ^ 3) with 8; lia). change (2 ^ 3) with 8. lia.
Qed.

Lemma value_object x : 0 < x < 536870912 -> ecma_object_of_value (value_of x) = x.
Proof. intros H. rewrite value_word by exact H. unfold ecma_object_of_value, ECMA_VALUE_SHIFT. rewrite Z.shiftr_div_pow2 by lia. change (2 ^ 3) with 8. Z.div_mod_to_equations; lia. Qed.

Lemma value_not_simple x n : 0 < x < 536870912 -> value_of x <> 8 * n.
Proof. intros H. rewrite value_word by exact H. lia. Qed.

Lemma value_not_empty x : 0 < x < 536870912 -> value_of x <> EMPTY.
Proof. exact (value_not_simple x 1). Qed.

Lemma value_inj x y : 0 < x < 536870912 -> 0 < y < 536870912 -> value_of x = value_of y -> x = y.
Proof. intros Hx Hy. rewrite !value_word by assumption. lia. Qed.

(** ** What objects know of each other *)

Definition nonempty (v : Z) : bool := negb (ecma_is_value_empty v).

Lemma nonempty_true v : nonempty v = true <-> v <> EMPTY.
Proof. unfold nonempty, ecma_is_value_empty, ecma_is_value_equal_to_simple_value. rewrite negb_true_iff. apply Z.eqb_neq. Qed.

Definition slot_buffer (s : gc_slot) : list (list Z) := match data s with WEAK_REFS buffer => [buffer] | _ => [] end.
Definition weak_buffers (ps : list gc_pair) : list (list Z) := flat_map (fun p => slot_buffer p.1 ++ slot_buffer p.2) ps.

(** The holders that an object knows, and the objects that a holder knows *)
Definition weak_refs (ob : gc_object) : list Z := List.filter nonempty (concat (weak_buffers (properties ob))).
Definition class_keys (c : class_object) : list Z :=
  match c with
  | CLASS_WEAKREF target => if ecma_is_value_undefined target then [] else [target]
  | CLASS_CONTAINER WEAKMAP_UL _ entries | CLASS_CONTAINER WEAKSET_UL _ entries => List.filter nonempty (map fst entries)
  | _ => []
  end.
Definition holder_keys (ob : gc_object) : list Z := match class_of ob with Some c => class_keys c | None => [] end.

Record weak_ok (o : gmap Z gc_object) : Prop := {
  wo_range : forall x, is_Some (o !! x) -> 0 < x < 536870912;
  wo_one : forall x ob, o !! x = Some ob -> (length (weak_buffers (properties ob)) <= 1)%nat;
  wo_refs : forall k kob u, o !! k = Some kob -> In u (weak_refs kob) -> exists h hob, u = value_of h /\ o !! h = Some hob /\ In (value_of k) (holder_keys hob);
  wo_keys : forall h hob u, o !! h = Some hob -> In u (holder_keys hob) -> exists k kob, u = value_of k /\ o !! k = Some kob /\ In (value_of h) (weak_refs kob);
  wo_nodup : forall x ob, o !! x = Some ob -> List.NoDup (weak_refs ob) /\ List.NoDup (holder_keys ob)
}.

(** ** Cleaning *)

Definition clean_value (u v : Z) : Z := if v =? u then EMPTY else v.
Definition clean_slot (u : Z) (s : gc_slot) : gc_slot := match data s with WEAK_REFS buffer => mk_slot (property s) (name_cp s) (WEAK_REFS (map (clean_value u) buffer)) | _ => s end.
Definition clean_properties (u : Z) (ps : list gc_pair) : list gc_pair := map (fun p => (clean_slot u p.1, clean_slot u p.2)) ps.
Definition clean_refs (u : Z) (ob : gc_object) : gc_object := set_properties (clean_properties u (properties ob)) ob.

Definition clean_entry (id : container_id) (u : Z) (e : Z * Z) : Z * Z := if e.1 =? u then (ecma_op_internal_buffer_delete id e).1 else e.
Definition clean_size (u size : Z) (entries : list (Z * Z)) : Z := if existsb (fun e => e.1 =? u) entries then u32 (size - 1) else size.
Definition clean_class (u : Z) (c : class_object) : class_object :=
  match c with
  | CLASS_WEAKREF target => if target =? u then CLASS_WEAKREF ECMA_VALUE_UNDEFINED else c
  | CLASS_CONTAINER WEAKMAP_UL size entries => CLASS_CONTAINER WEAKMAP_UL (clean_size u size entries) (map (clean_entry WEAKMAP_UL u) entries)
  | CLASS_CONTAINER WEAKSET_UL size entries => CLASS_CONTAINER WEAKSET_UL (clean_size u size entries) (map (clean_entry WEAKSET_UL u) entries)
  | _ => c
  end.
Definition clean_holder (u : Z) (ob : gc_object) : gc_object := match class_of ob with Some c => with_class (clean_class u c) ob | None => ob end.
Definition clean (u : Z) (ob : gc_object) : gc_object := clean_holder u (clean_refs u ob).

Lemma with_class_spec c c' ob : class_of ob = Some c -> class_of (with_class c' ob) = Some c' /\ properties (with_class c' ob) = properties ob
  /\ type_flags_refs (with_class c' ob) = type_flags_refs ob /\ gc_next_cp (with_class c' ob) = gc_next_cp ob /\ u2_cp (with_class c' ob) = u2_cp ob /\ hashmap (with_class c' ob) = hashmap ob.
Proof. unfold class_of, with_class. destruct (body ob) eqn:E; intros [=]; subst; cbn; now splits. Qed.

Lemma with_class_id c ob : class_of ob = Some c -> with_class c ob = ob.
Proof. unfold class_of, with_class. destruct ob as [f n u b h ps]. cbn. destruct b; intros [=]; now subst. Qed.

Lemma clean_holder_spec u ob : properties (clean_holder u ob) = properties ob /\ class_of (clean_holder u ob) = clean_class u <$> class_of ob /\ gc_next_cp (clean_holder u ob) = gc_next_cp ob
  /\ type_flags_refs (clean_holder u ob) = type_flags_refs ob /\ u2_cp (clean_holder u ob) = u2_cp ob /\ hashmap (clean_holder u ob) = hashmap ob.
Proof. unfold clean_holder. destruct (class_of ob) as [c |] eqn:E; [destruct (with_class_spec c (clean_class u c) ob E) as (-> & -> & -> & -> & -> & ->); now splits |]. rewrite E. now splits. Qed.

Lemma clean_refs_holder u ob : class_of (clean_refs u ob) = class_of ob /\ body (clean_refs u ob) = body ob.
Proof. now split. Qed.

(** Values and lists that do not have [u] stay as they are *)
Lemma clean_values_id u l : ~ In u l -> map (clean_value u) l = l.
Proof.
  intros H. induction l as [| v l IH]; [reflexivity |]. cbn [map]. unfold clean_value at 1. destruct (Z.eqb_spec v u) as [-> | Hne]; [exfalso; apply H; now left |]. rewrite IH; [reflexivity |]. intros Hi. apply H. now right.
Qed.

Lemma in_nonempty u l : u <> EMPTY -> In u (List.filter nonempty l) <-> In u l.
Proof. intros Hu. rewrite filter_In, nonempty_true. tauto. Qed.

Lemma clean_properties_id u ps : (forall b, In b (weak_buffers ps) -> ~ In u b) -> clean_properties u ps = ps.
Proof.
  intros H. unfold clean_properties. rewrite <- (map_id ps) at 2. apply map_ext_in. intros [s t] Hin. cbn [fst snd].
  assert (Hb : forall q b, (q = s \/ q = t) -> In b (slot_buffer q) -> ~ In u b) by (intros q b Hq Hb; apply H; unfold weak_buffers; apply in_flat_map; exists (s, t); split; [exact Hin |]; rewrite in_app_iff; destruct Hq as [-> | ->]; [now left | now right]).
  assert (Hs : forall q, (q = s \/ q = t) -> clean_slot u q = q).
  { intros q Hq. unfold clean_slot. pose proof (Hb q) as Hb'. unfold slot_buffer in Hb'. destruct q as [p n d]. cbn in *. destruct d; try reflexivity. rewrite clean_values_id; [reflexivity |]. apply (Hb' buffer Hq). now left. }
  rewrite (Hs s), (Hs t); tauto.
Qed.

Lemma clean_refs_id u ob : u <> EMPTY -> ~ In u (weak_refs ob) -> clean_refs u ob = ob.
Proof.
  intros Hu H. unfold clean_refs. rewrite clean_properties_id; [now destruct ob |]. intros b Hb Hin. apply H. unfold weak_refs. rewrite in_nonempty by exact Hu. apply in_concat. now exists b.
Qed.

Lemma clean_entries_id id u entries : ~ In u (map fst entries) -> map (clean_entry id u) entries = entries /\ existsb (fun e => e.1 =? u) entries = false.
Proof.
  induction entries as [| e entries IH]; intros H; [now split |]. cbn [map existsb] in *. unfold clean_entry at 1. destruct (Z.eqb_spec e.1 u) as [E | Hne]; [exfalso; apply H; left; exact E |].
  destruct IH as [-> ->]; [intros Hi; apply H; now right | now split].
Qed.

Lemma clean_class_id u c : u <> EMPTY -> u <> ECMA_VALUE_UNDEFINED -> ~ In u (class_keys c) -> clean_class u c = c.
Proof.
  intros Hu Hu' H. destruct c; try reflexivity.
  - destruct id; try reflexivity; cbn [clean_class class_keys] in *; rewrite in_nonempty in H by exact Hu; unfold clean_size; destruct (clean_entries_id WEAKMAP_UL u entries H) as [E1 E2]; destruct (clean_entries_id WEAKSET_UL u entries H) as [E3 _]; now rewrite ?E1, ?E3, E2.
  - cbn [clean_class class_keys] in *. destruct (Z.eqb_spec target u) as [-> | Hne]; [| reflexivity]. exfalso. apply H. unfold ecma_is_value_undefined, ecma_is_value_equal_to_simple_value. rewrite (proj2 (Z.eqb_neq _ _) Hu'). now left.
Qed.

Lemma clean_holder_id u ob : u <> EMPTY -> u <> ECMA_VALUE_UNDEFINED -> ~ In u (holder_keys ob) -> clean_holder u ob = ob.
Proof.
  intros Hu Hu' H. unfold clean_holder, holder_keys in *. destruct (class_of ob) as [c |] eqn:E; [| reflexivity]. rewrite clean_class_id by assumption. now apply with_class_id.
Qed.

(** What is known afterwards *)
Lemma clean_values_filter u l : List.filter nonempty (map (clean_value u) l) = List.filter (fun v => negb (v =? u)) (List.filter nonempty l).
Proof.
  induction l as [| v l IH]; [reflexivity |]. cbn [map List.filter]. unfold clean_value at 1 2. destruct (Z.eqb_spec v u) as [-> | Hne].
  - change (nonempty EMPTY) with false. destruct (nonempty u); [cbn [List.filter]; rewrite Z.eqb_refl; exact IH | exact IH].
  - destruct (nonempty v); [| exact IH]. cbn [List.filter]. rewrite (proj2 (Z.eqb_neq _ _) Hne). cbn [negb]. now rewrite IH.
Qed.

Lemma slot_buffer_clean u s : slot_buffer (clean_slot u s) = map (map (clean_value u)) (slot_buffer s).
Proof. destruct s as [p n d]. unfold slot_buffer, clean_slot. cbn. destruct d; reflexivity. Qed.

Lemma weak_buffers_clean u ps : weak_buffers (clean_properties u ps) = map (map (clean_value u)) (weak_buffers ps).
Proof.
  unfold weak_buffers, clean_properties. induction ps as [| [s t] ps IH]; [reflexivity |]. cbn [map flat_map fst snd]. now rewrite !map_app, IH, !slot_buffer_clean.
Qed.

Lemma weak_refs_clean u ob : weak_refs (clean u ob) = List.filter (fun v => negb (v =? u)) (weak_refs ob).
Proof.
  unfold weak_refs, clean. rewrite (proj1 (clean_holder_spec u _)). cbn [clean_refs set_properties properties]. rewrite weak_buffers_clean, <- clean_values_filter. now rewrite concat_map.
Qed.

Lemma class_keys_clean u c : class_keys (clean_class u c) = List.filter (fun v => negb (v =? u)) (class_keys c).
Proof.
  destruct c; try reflexivity.
  - destruct id; try reflexivity; cbn [clean_class class_keys]; rewrite <- clean_values_filter, !map_map; f_equal; apply map_ext; intros e; unfold clean_entry, clean_value; now destruct (e.1 =? u).
  - cbn [clean_class]. destruct (Z.eqb_spec target u) as [-> | Hne]; cbn [class_keys].
    + change (ecma_is_value_undefined ECMA_VALUE_UNDEFINED) with true. destruct (ecma_is_value_undefined u); [reflexivity |]. cbn [List.filter]. now rewrite Z.eqb_refl.
    + destruct (ecma_is_value_undefined target); [reflexivity |]. cbn [List.filter]. now rewrite (proj2 (Z.eqb_neq _ _) Hne).
Qed.

Lemma holder_keys_clean u ob : holder_keys (clean u ob) = List.filter (fun v => negb (v =? u)) (holder_keys ob).
Proof.
  unfold holder_keys, clean. destruct (clean_holder_spec u (clean_refs u ob)) as (_ & -> & _). rewrite (proj1 (clean_refs_holder u ob)). destruct (class_of ob); [apply class_keys_clean | reflexivity].
Qed.

(** ** The operations on weak references *)

(** Everything but the objects stays, and the log grows *)
Record effect (w w' : gworld) : Prop := {
  ef_codes : codes w' = codes w;
  ef_scripts : scripts w' = scripts w;
  ef_chain : ecma_gc_objects_cp w' = ecma_gc_objects_cp w;
  ef_limit : gc_mark_limit w' = gc_mark_limit w;
  ef_number : ecma_gc_objects_number w' = ecma_gc_objects_number w;
  ef_new : ecma_gc_new_objects w' = ecma_gc_new_objects w;
  ef_log : exists ev, log w' = log w ++ ev
}.

#[export] Instance effect_refl : Reflexive effect.
Proof. constructor; try reflexivity. exists []. now rewrite app_nil_r. Qed.

#[export] Instance effect_trans : Transitive effect.
Proof. intros a b c [A1 A2 A3 A4 A5 A6 [e1 A7]] [B1 B2 B3 B4 B5 B6 [e2 B7]]. constructor; try congruence. exists (e1 ++ e2). now rewrite B7, A7, app_assoc. Qed.

Lemma effect_put w x ob : effect w (put x ob w).
Proof. constructor; try reflexivity. exists []. cbn. now rewrite app_nil_r. Qed.

Lemma effect_emit w ev : effect w (emit ev w).
Proof. constructor; try reflexivity. now exists ev. Qed.

Lemma put_here w x ob : objects (put x ob w) !! x = Some ob.
Proof. cbn. now rewrite lookup_insert_eq. Qed.

Lemma put_other w x y ob : y <> x -> objects (put x ob w) !! y = objects w !! y.
Proof. intros H. cbn. now rewrite lookup_insert_ne by congruence. Qed.

Lemma empty_first_run u b : u <> EMPTY -> List.NoDup (List.filter nonempty b) -> In u b -> empty_first u b = Some (map (clean_value u) b).
Proof.
  intros Hu. induction b as [| v b IH]; intros Hnd Hin; [easy |]. cbn [empty_first map]. unfold clean_value at 1. destruct (Z.eqb_spec v u) as [-> | Hne].
  - rewrite clean_values_id; [reflexivity |]. intros H. cbn [List.filter] in Hnd. rewrite (proj2 (nonempty_true u) Hu) in Hnd. inversion Hnd as [| ? ? Hn _]. apply Hn. now apply in_nonempty.
  - destruct Hin as [-> | Hin]; [easy |]. rewrite IH; [reflexivity | | exact Hin]. cbn [List.filter] in Hnd. destruct (nonempty v); [now inversion Hnd | exact Hnd].
Qed.

Lemma unref_slot_run u s : u <> EMPTY -> is_weak_refs s = true -> List.NoDup (List.filter nonempty (concat (slot_buffer s))) -> In u (concat (slot_buffer s)) -> unref_slot u s = Some (clean_slot u s).
Proof.
  intros Hu Hs. destruct s as [p n d]. unfold is_weak_refs, slot_buffer, unref_slot, clean_slot in *. cbn in *. destruct d; try discriminate. cbn. rewrite app_nil_r. intros Hnd Hin. now rewrite empty_first_run.
Qed.

Lemma slot_cases s : is_weak_refs s = true \/ (is_weak_refs s = false /\ slot_buffer s = [] /\ forall u, clean_slot u s = s).
Proof. destruct s as [p n d]. unfold is_weak_refs, slot_buffer, clean_slot. cbn. destruct d; auto. Qed.

Lemma slot_buffer_one s : is_weak_refs s = true -> exists b, slot_buffer s = [b].
Proof. unfold is_weak_refs, slot_buffer. destruct (data s); try discriminate. intros _. now eexists. Qed.

Lemma unref_pairs_run u ps : u <> EMPTY -> (length (weak_buffers ps) <= 1)%nat -> List.NoDup (List.filter nonempty (concat (weak_buffers ps))) -> In u (concat (weak_buffers ps)) ->
  unref_pairs u ps = Some (clean_properties u ps).
Proof.
  intros Hu. unfold weak_buffers. induction ps as [| [s t] ps IH]; intros Hone Hnd Hin; [easy |]. cbn [flat_map fst snd unref_pairs clean_properties map] in *. rewrite !concat_app, !List.filter_app in *. rewrite !length_app in Hone.
  destruct (slot_cases s) as [Hs | (Hs & Es & Hc)]; rewrite Hs.
  - destruct (slot_buffer_one s Hs) as [b Eb]. rewrite Eb in Hone. cbn [length] in Hone. destruct (slot_buffer t) eqn:Et; [| cbn [length] in Hone; lia].
    assert (Eps : flat_map (fun p => slot_buffer p.1 ++ slot_buffer p.2) ps = []) by (destruct (flat_map _ ps); [reflexivity | cbn [length] in Hone; lia]).
    rewrite Eps in *. cbn [concat List.filter] in *. rewrite !app_nil_r in *. rewrite (unref_slot_run u s Hu Hs Hnd Hin). f_equal. f_equal; [f_equal |].
    + destruct (slot_cases t) as [Ht | (_ & _ & Ht)]; [destruct (slot_buffer_one t Ht) as [b' Eb']; congruence | now rewrite Ht].
    + symmetry. apply clean_properties_id. unfold weak_buffers. rewrite Eps. easy.
  - rewrite Es in *. cbn [app concat List.filter length] in *. rewrite Hc. destruct (slot_cases t) as [Ht | (Ht & Et & Hc')]; rewrite Ht.
    + destruct (slot_buffer_one t Ht) as [b Eb]. rewrite Eb in Hone. cbn [length] in Hone.
      assert (Eps : flat_map (fun p => slot_buffer p.1 ++ slot_buffer p.2) ps = []) by (destruct (flat_map _ ps); [reflexivity | cbn [length] in Hone; lia]).
      rewrite Eps in *. cbn [concat List.filter] in *. rewrite !app_nil_r in *. rewrite (unref_slot_run u t Hu Ht Hnd Hin). do 2 f_equal.
      symmetry. apply clean_properties_id. unfold weak_buffers. rewrite Eps. easy.
    + rewrite Et in *. cbn [app concat List.filter length] in *. rewrite Hc', (IH ltac:(lia) Hnd Hin). reflexivity.
Qed.

Lemma unref_weak_run w k ob u : objects w !! k = Some ob -> u <> EMPTY -> (length (weak_buffers (properties ob)) <= 1)%nat -> List.NoDup (weak_refs ob) -> In u (weak_refs ob) ->
  ecma_op_object_unref_weak k u w = Some (put k (clean_refs u ob) w).
Proof.
  intros Hk Hu Hone Hnd Hin. unfold ecma_op_object_unref_weak. rewrite Hk. unfold weak_refs in *. rewrite in_nonempty in Hin by exact Hu. now rewrite unref_pairs_run.
Qed.

Lemma delete_entry_run id u entries : id = WEAKMAP_UL \/ id = WEAKSET_UL -> u <> EMPTY -> List.NoDup (List.filter nonempty (map fst entries)) -> In u (map fst entries) ->
  exists ev, delete_entry_of id u entries = Some (map (clean_entry id u) entries, ev).
Proof.
  intros Hid Hu. induction entries as [| e entries IH]; intros Hnd Hin; [easy |]. cbn [delete_entry_of map] in *. unfold clean_entry at 1. destruct (Z.eqb_spec e.1 u) as [E | Hne].
  - assert (Hn : ~ In u (map fst entries)).
    { intros H. cbn [List.filter] in Hnd. rewrite E, (proj2 (nonempty_true u) Hu) in Hnd. inversion Hnd as [| ? ? Hn _]. apply Hn. now apply in_nonempty. }
    rewrite (proj1 (clean_entries_id id u entries Hn)). destruct (ecma_op_internal_buffer_delete id e) as [e' ev]. now exists ev.
  - destruct Hin as [E | Hin]; [easy |]. destruct IH as [ev ->]; [| exact Hin | now exists ev]. cbn [List.filter] in Hnd. destruct (nonempty e.1); [now inversion Hnd | exact Hnd].
Qed.

Lemma existsb_key u entries : In u (map fst entries) -> existsb (fun e : Z * Z => e.1 =? u) entries = true.
Proof. intros H. apply existsb_exists. apply in_map_iff in H as (e & <- & He). exists e. now rewrite Z.eqb_refl. Qed.

(** A weak container or a weak reference forgets one of its keys *)
Lemma remove_weak_entry_run w h ob id size entries u : objects w !! h = Some ob -> class_of ob = Some (CLASS_CONTAINER id size entries) -> id = WEAKMAP_UL \/ id = WEAKSET_UL -> u <> EMPTY ->
  List.NoDup (holder_keys ob) -> In u (holder_keys ob) -> exists ev, ecma_op_container_remove_weak_entry h u w = Some (emit ev (put h (clean_holder u ob) w)).
Proof.
  intros Hh Hc Hid Hu Hnd Hin. unfold holder_keys in *. rewrite Hc in *. assert (Ek : class_keys (CLASS_CONTAINER id size entries) = List.filter nonempty (map fst entries)) by (now destruct Hid as [-> | ->]). rewrite Ek in *. rewrite in_nonempty in Hin by exact Hu.
  destruct (delete_entry_run id u entries Hid Hu Hnd Hin) as [ev E]. exists ev. unfold ecma_op_container_remove_weak_entry. rewrite Hh, Hc, E. unfold clean_holder. rewrite Hc.
  assert (Ec : clean_class u (CLASS_CONTAINER id size entries) = CLASS_CONTAINER id (u32 (size - 1)) (map (clean_entry id u) entries)); [| now rewrite Ec].
  destruct Hid as [-> | ->]; cbn [clean_class]; unfold clean_size; now rewrite (existsb_key u entries Hin).
Qed.
