(* ===== verification/GcRelease.v ===== *)
(** * The release of one object

    ecma_gc_free_object follows nothing that is not there, leaves all other objects clean of
    the one that is gone, and changes nothing else of them. *)
From Stdlib Require Import ZArith Lia Bool List.
From stdpp Require Import base gmap list.
From S2P Require Import Prelude JmemPointers Values PropNames GcHeap GcMark Gc GcFree GcSweep.
Import ListNotations.
#[local] Open Scope Z_scope.

(** ** What the release of an object relies on *)

(** The type of a property fits its value *)
Definition slot_ok (s : gc_slot) : bool :=
  match data s with
  | DATA _ => ECMA_PROPERTY_IS_RAW (property s) && flag_set (property s) ECMA_PROPERTY_FLAG_DATA
  | GETTER_SETTER _ _ | REFERENCE _ => ECMA_PROPERTY_IS_RAW (property s) && negb (flag_set (property s) ECMA_PROPERTY_FLAG_DATA)
  | UNUSED => property s =? ECMA_PROPERTY_TYPE_DELETED
  | _ => ECMA_PROPERTY_IS_INTERNAL (property s)
  end.

Definition is_some {A} (o : option A) : bool := match o with Some _ => true | None => false end.

Definition class_ok (w : gworld) (c : class_object) : bool :=
  match c with CLASS_GENERATOR e | CLASS_ASYNC_GENERATOR e => is_some (ecma_gc_free_executable_object w e) | _ => true end.

(** Objects whose properties are not released have no weak references *)
Definition no_weak_refs (ob : gc_object) : bool := match weak_buffers (properties ob) with [] => true | _ => false end.

Definition array_ok (ob : gc_object) (a : array_object) : bool :=
  negb (ecma_op_array_is_fast_array a)
  || (no_weak_refs ob && match array_values a with Some values => (Z.to_nat (ECMA_FAST_ARRAY_ALIGN_LENGTH (array_length a)) <=? length values)%nat | None => true end).

Definition body_ok (w : gworld) (ob : gc_object) : bool :=
  match body ob with
  | CLASS c | BUILT_IN_CLASS _ c => class_ok w c
  | ARRAY a | BUILT_IN_ARRAY _ a => array_ok ob a
  | FUNCTION _ static bytecode_cp _ => static || is_some (codes w !! bytecode_cp)
  | BOUND_FUNCTION _ args_len_or_this target_length args => is_some (free_bound_function args_len_or_this target_length args)
  | LEX_CLASS_DATA type _ => (type =? ECMA_LEX_ENV_CLASS_TYPE_MODULE) || no_weak_refs ob
  | LEX_CLASS _ | LEX_THIS_OBJECT_BOUND _ => no_weak_refs ob
  | _ => true
  end.

Definition releasable (w : gworld) (ob : gc_object) : bool := body_ok w ob && forallb (fun p => slot_ok p.1 && slot_ok p.2) (properties ob).

Ltac decide_all := repeat match goal with |- context [decide ?P] => destruct (decide P) end.

Section Release.
Variable w0 : gworld.
Variable x : Z.
Variable ob : gc_object.
Hypothesis Hweak : weak_ok (objects w0).
Hypothesis Hx : objects w0 !! x = Some ob.

Abbreviation u := (value_of x).

Lemma x_range : 0 < x < 536870912.
Proof. apply (wo_range _ Hweak). now exists ob. Qed.

Lemma u_set : u <> EMPTY /\ u <> ECMA_VALUE_UNDEFINED.
Proof. pose proof x_range. split; [now apply (value_not_simple x 1) | now apply (value_not_simple x 9)]. Qed.

Lemma range_of y oby : objects w0 !! y = Some oby -> 0 < y < 536870912.
Proof. intros H. apply (wo_range _ Hweak). now exists oby. Qed.

(** An object that the released one does not hold does not know it, and conversely *)
Lemma refs_of_others y oby : objects w0 !! y = Some oby -> ~ In (value_of y) (holder_keys ob) -> clean_refs u oby = oby.
Proof.
  intros Hy Hn. apply clean_refs_id; [apply u_set |]. intros H. destruct (wo_refs _ Hweak y oby u Hy H) as (h & hob & E & Hh & Hk).
  assert (h = x) as -> by (apply value_inj; [exact (range_of h hob Hh) | exact x_range | congruence]). rewrite Hx in Hh. injection Hh as <-. easy.
Qed.

Lemma keys_of_others y oby : objects w0 !! y = Some oby -> ~ In (value_of y) (weak_refs ob) -> ~ In u (holder_keys oby).
Proof.
  intros Hy Hn H. destruct (wo_keys _ Hweak y oby u Hy H) as (k & kob & E & Hk & Hr).
  assert (k = x) as -> by (apply value_inj; [exact (range_of k kob Hk) | exact x_range | congruence]). rewrite Hx in Hk. injection Hk as <-. easy.
Qed.

(** ** The class *)

(** After the part that depends on the class: only the properties of the object follow *)
Record class_released (w1 : gworld) : Prop := {
  cr_effect : effect w0 w1;
  cr_object : exists xob, objects w1 !! x = Some xob /\ properties xob = clean_properties u (properties ob) /\ gc_next_cp xob = gc_next_cp ob /\ hashmap xob = hashmap ob;
  cr_others : forall y, y <> x -> objects w1 !! y = clean_refs u <$> objects w0 !! y
}.

(** No weak references are involved *)
Lemma class_released_same w1 : effect w0 w1 -> holder_keys ob = [] -> (forall y, y <> x -> objects w1 !! y = objects w0 !! y) ->
  (exists xob, objects w1 !! x = Some xob /\ properties xob = properties ob /\ gc_next_cp xob = gc_next_cp ob /\ hashmap xob = hashmap ob) -> class_released w1.
Proof.
  intros He Hk Ho (xob & Hxob & Ep & En & Eh). constructor; [exact He | |].
  - exists xob. split; [exact Hxob |]. split; [| now split]. rewrite Ep. pose proof (refs_of_others x ob Hx) as H. rewrite Hk in H. specialize (H (fun F => F)). unfold clean_refs in H. now apply (f_equal properties) in H.
  - intros y Hy. rewrite (Ho y Hy). destruct (objects w0 !! y) as [oby |] eqn:E; [| reflexivity]. cbn. f_equal. symmetry. apply (refs_of_others y oby E). now rewrite Hk.
Qed.

Lemma emit_released ev : holder_keys ob = [] -> class_released (emit ev w0).
Proof. intros Hk. apply class_released_same; [apply effect_emit | exact Hk | easy |]. now exists ob. Qed.

Lemma release_weakref target : class_of ob = Some (CLASS_WEAKREF target) -> ecma_is_value_undefined target = false ->
  exists w1, ecma_op_object_unref_weak (ecma_object_of_value target) u w0 = Some w1 /\ class_released w1.
Proof.
  intros Hc Ht. assert (Hkeys : holder_keys ob = [target]) by (unfold holder_keys; rewrite Hc; cbn [class_keys]; now rewrite Ht).
  destruct (wo_keys _ Hweak x ob target Hx) as (k & kob & -> & Hk & Hr); [rewrite Hkeys; now left |]. rewrite (value_object k) by exact (range_of k kob Hk).
  exists (put k (clean_refs u kob) w0). split; [apply unref_weak_run; [exact Hk | apply u_set | exact (wo_one _ Hweak k kob Hk) | apply (wo_nodup _ Hweak k kob Hk) | exact Hr] |].
  assert (Hother : forall y oby, objects w0 !! y = Some oby -> y <> k -> clean_refs u oby = oby).
  { intros y oby Hy Hne. apply (refs_of_others y oby Hy). rewrite Hkeys. intros [H | []]. apply Hne. symmetry. apply value_inj; [exact (range_of k kob Hk) | exact (range_of y oby Hy) | exact H]. }
  constructor; [apply effect_put | |].
  - destruct (decide (x = k)) as [<- | Hne].
    + rewrite Hx in Hk. injection Hk as <-. exists (clean_refs u ob). split; [apply put_here | now splits].
    + exists ob. split; [rewrite put_other by congruence; exact Hx |]. split; [| now split]. pose proof (Hother x ob Hx Hne) as H. unfold clean_refs in H. now apply (f_equal properties) in H.
  - intros y Hy. destruct (decide (y = k)) as [-> | Hne]; [rewrite put_here, Hk; reflexivity |]. rewrite put_other by exact Hne. destruct (objects w0 !! y) as [oby |] eqn:E; [| reflexivity]. cbn. now rewrite (Hother y oby E Hne).
Qed.

(** *** Weak containers *)

Definition emptied (id : container_id) (e : Z * Z) : Z * Z := if ecma_is_value_empty e.1 then e else (EMPTY, match id with WEAKMAP_UL => EMPTY | _ => e.2 end).

Lemma emptied_key id e : (emptied id e).1 = EMPTY.
Proof. unfold emptied. destruct (ecma_is_value_empty e.1) eqn:E; [| reflexivity]. unfold ecma_is_value_empty, ecma_is_value_equal_to_simple_value in E. now apply Z.eqb_eq in E. Qed.

Lemma delete_middle id u' pre e post : u' <> EMPTY -> e.1 = u' -> delete_entry_of id u' (map (emptied id) pre ++ e :: post)
  = Some (map (emptied id) pre ++ (ecma_op_internal_buffer_delete id e).1 :: post, (ecma_op_internal_buffer_delete id e).2).
Proof.
  intros Hu He. induction pre as [| p pre IH]; cbn [map app delete_entry_of].
  - rewrite He, Z.eqb_refl. now destruct (ecma_op_internal_buffer_delete id e).
  - rewrite emptied_key, (proj2 (Z.eqb_neq _ _)) by congruence. now rewrite IH.
Qed.

Lemma container_entry_run w h xob id size pre e post : objects w !! h = Some xob -> class_of xob = Some (CLASS_CONTAINER id size (pre ++ e :: post)) ->
  container_entry h (length pre) w = Some (id, size, pre ++ e :: post, e).
Proof. intros Hh Hc. unfold container_entry. rewrite Hh, Hc. now rewrite list_lookup_middle. Qed.

Lemma set_entry_run w h xob id size pre e e' post : objects w !! h = Some xob -> class_of xob = Some (CLASS_CONTAINER id size (pre ++ e :: post)) ->
  set_entry h (length pre) e' w = Some (put h (with_class (CLASS_CONTAINER id size (pre ++ e' :: post)) xob) w).
Proof. intros Hh Hc. unfold set_entry. rewrite Hh, Hc. do 4 f_equal. now apply list_insert_middle || now rewrite insert_app_r_alt, Nat.sub_diag by lia. Qed.

Lemma in_snoc_other (z : Z) pre (e : Z * Z) : z <> e.1 -> z ∈ map fst (pre ++ [e]) <-> z ∈ map fst pre.
Proof. intros H. rewrite map_app, elem_of_app. cbn [map]. rewrite list_elem_of_singleton. tauto. Qed.

Lemma in_snoc_same pre (e : Z * Z) : e.1 ∈ map fst (pre ++ [e]).
Proof. rewrite map_app, elem_of_app. right. now left. Qed.

(** What is known of the entries: [known] objects have forgotten the container *)
Record unreferenced (id : container_id) (pre rest : list (Z * Z)) (known : list (Z * Z)) (w : gworld) : Prop := {
  un_effect : effect w0 w;
  un_object : exists xob size, objects w !! x = Some xob /\ class_of xob = Some (CLASS_CONTAINER id size (map (emptied id) pre ++ rest))
    /\ properties xob = (if decide (u ∈ map fst known) then clean_properties u (properties ob) else properties ob) /\ gc_next_cp xob = gc_next_cp ob /\ hashmap xob = hashmap ob;
  un_others : forall y, y <> x -> objects w !! y = (if decide (value_of y ∈ map fst known) then clean_refs u <$> objects w0 !! y else objects w0 !! y)
}.

Section Entries.
Variables (id : container_id) (size0 : Z) (entries : list (Z * Z)).
Hypothesis Hid : id = WEAKMAP_UL \/ id = WEAKSET_UL.
Hypothesis Hclass : class_of ob = Some (CLASS_CONTAINER id size0 entries).

Lemma keys_entries : holder_keys ob = List.filter nonempty (map fst entries).
Proof. unfold holder_keys. rewrite Hclass. now destruct Hid as [-> | ->]. Qed.

Lemma key_before pre e post : entries = pre ++ e :: post -> e.1 <> EMPTY -> ~ In e.1 (map fst pre).
Proof.
  intros E He H. pose proof (proj2 (wo_nodup _ Hweak x ob Hx)) as Hnd. rewrite keys_entries, E, map_app, List.filter_app in Hnd. cbn [map List.filter] in Hnd. rewrite (proj2 (nonempty_true e.1) He) in Hnd.
  apply NoDup_remove_2 in Hnd. apply Hnd. rewrite in_app_iff. left. now apply in_nonempty.
Qed.

Lemma key_object pre e post : entries = pre ++ e :: post -> e.1 <> EMPTY -> exists k kob, e.1 = value_of k /\ objects w0 !! k = Some kob /\ In u (weak_refs kob).
Proof.
  intros E He. apply (wo_keys _ Hweak x ob e.1 Hx). rewrite keys_entries, E, in_nonempty by exact He. rewrite map_app, in_app_iff. right. now left.
Qed.

Lemma unref_step pre e post w : entries = pre ++ e :: post -> e.1 <> EMPTY -> unreferenced id pre (e :: post) pre w ->
  exists w1, ecma_op_object_unref_weak (ecma_object_of_value e.1) u w = Some w1 /\ unreferenced id pre (e :: post) (pre ++ [e]) w1.
Proof.
  intros E He [Hef (xob & size & Hxob & Hc & Hp & Hn & Hh) Ho]. destruct (key_object pre e post E He) as (k & kob & Ek & Hk & Hr). pose proof (key_before pre e post E He) as Hnew. rewrite <- list_elem_of_In in Hnew.
  pose proof (range_of k kob Hk) as Rk. rewrite Ek, (value_object k Rk).
  assert (Hcur : exists kob', objects w !! k = Some kob' /\ properties kob' = properties kob).
  { destruct (decide (k = x)) as [-> | Hne].
    - exists xob. split; [exact Hxob |]. rewrite Hp, decide_False by (rewrite <- Ek; exact Hnew). rewrite Hx in Hk. now injection Hk as <-.
    - exists kob. split; [| reflexivity]. rewrite (Ho k Hne), decide_False by (rewrite <- Ek; exact Hnew). exact Hk. }
  destruct Hcur as (kob' & Hk' & Ep). exists (put k (clean_refs u kob') w). split.
  { apply unref_weak_run; [exact Hk' | apply u_set | rewrite Ep; exact (wo_one _ Hweak k kob Hk) | unfold weak_refs; rewrite Ep; apply (wo_nodup _ Hweak k kob Hk) | unfold weak_refs; rewrite Ep; exact Hr]. }
  constructor; [etransitivity; [exact Hef | apply effect_put] | |].
  - destruct (decide (k = x)) as [-> | Hne].
    + rewrite Hxob in Hk'. injection Hk' as <-. exists (clean_refs u xob), size. split; [apply put_here |]. split; [exact Hc |]. split; [| now split]. rewrite decide_True by (rewrite <- Ek; apply in_snoc_same). cbn. rewrite Hp. now rewrite decide_False by (rewrite <- Ek; exact Hnew).
    + exists xob, size. split; [rewrite put_other by congruence; exact Hxob |]. split; [exact Hc |]. split; [| now split]. rewrite Hp.
      assert (Hu : u <> e.1) by (rewrite Ek; intros H; apply Hne; symmetry; apply value_inj; [apply x_range | exact Rk | exact H]).
      destruct (decide (u ∈ map fst pre)) as [H | H]; [now rewrite decide_True by (apply in_snoc_other; assumption) | now rewrite decide_False by (rewrite in_snoc_other; assumption)].
  - intros y Hy. destruct (decide (y = k)) as [-> | Hne].
    + rewrite put_here, decide_True by (rewrite <- Ek; apply in_snoc_same). rewrite Hk. cbn. rewrite (Ho k Hy), decide_False in Hk' by (rewrite <- Ek; exact Hnew). rewrite Hk in Hk'. now injection Hk' as <-.
    + rewrite put_other by exact Hne. rewrite (Ho y Hy). destruct (objects w0 !! y) as [oby |] eqn:Ey; [| now decide_all].
      assert (Hu : value_of y <> e.1) by (rewrite Ek; intros H; apply Hne; apply value_inj; [exact (range_of y oby Ey) | exact Rk | exact H]).
      destruct (decide (value_of y ∈ map fst pre)) as [H | H]; [now rewrite decide_True by (apply in_snoc_other; assumption) | now rewrite decide_False by (rewrite in_snoc_other; assumption)].
Qed.

(** A change of the class of the object *)
Lemma unreferenced_class pre rest known w w' pre' rest' size xob : unreferenced id pre rest known w -> objects w !! x = Some xob -> effect w w' -> (forall y, y <> x -> objects w' !! y = objects w !! y) ->
  objects w' !! x = Some (with_class (CLASS_CONTAINER id size (map (emptied id) pre' ++ rest')) xob) -> unreferenced id pre' rest' known w'.
Proof.
  intros [Hef (xob' & size' & Hxob & Hc & Hp & Hn & Hh) Ho] Hx' He Hs Hnew. rewrite Hx' in Hxob. injection Hxob as <-. destruct (with_class_spec _ (CLASS_CONTAINER id size (map (emptied id) pre' ++ rest')) xob Hc) as (Hc' & Hp' & _ & Hn' & _ & Hh').
  constructor; [now transitivity w | | intros y Hy; rewrite (Hs y Hy); now apply Ho]. eexists _, size. split; [exact Hnew |]. split; [exact Hc' |]. rewrite Hp', Hn', Hh'. now splits.
Qed.

Lemma with_class_twice c c' xob : with_class c (with_class c' xob) = with_class c xob.
Proof. unfold with_class. destruct xob as [f n p b h ps]. cbn. now destruct b. Qed.

Lemma free_weak_entry_run pre e post w : entries = pre ++ e :: post -> unreferenced id pre (e :: post) pre w ->
  exists w', free_weak_entry id x (length pre) w = Some w' /\ unreferenced id (pre ++ [e]) post (pre ++ [e]) w'.
Proof.
  intros E Hun. pose proof (un_object _ _ _ _ _ Hun) as (xob & size & Hxob & Hc & Hp & Hn & Hh). assert (Elen : length pre = length (map (emptied id) pre)) by now rewrite length_map.
  unfold free_weak_entry. rewrite Elen, (container_entry_run w x xob id size _ e post Hxob Hc).
  destruct (ecma_is_value_empty e.1) eqn:Ee.
  - assert (Ekey : e.1 = EMPTY) by (unfold ecma_is_value_empty, ecma_is_value_equal_to_simple_value in Ee; now apply Z.eqb_eq in Ee). exists w. split; [reflexivity |]. destruct Hun as [Hef _ Ho].
    assert (Hsnoc : forall z, z <> EMPTY -> z ∈ map fst (pre ++ [e]) <-> z ∈ map fst pre) by (intros z Hz; apply in_snoc_other; congruence).
    constructor; [exact Hef | |].
    + exists xob, size. split; [exact Hxob |]. rewrite Hc, map_app, <- app_assoc. cbn [map app]. unfold emptied at 3. rewrite Ee. split; [reflexivity |]. split; [| now split]. rewrite Hp. pose proof (Hsnoc u (proj1 u_set)) as H.
      destruct (decide (u ∈ map fst pre)); [now rewrite decide_True by tauto | now rewrite decide_False by tauto].
    + intros y Hy. rewrite (Ho y Hy). destruct (objects w0 !! y) as [oby |] eqn:Ey; [| now decide_all]. pose proof (Hsnoc (value_of y) (value_not_empty y (range_of y oby Ey))) as H.
      destruct (decide (value_of y ∈ map fst pre)); [now rewrite decide_True by tauto | now rewrite decide_False by tauto].
  - assert (He : e.1 <> EMPTY) by (unfold ecma_is_value_empty, ecma_is_value_equal_to_simple_value in Ee; now apply Z.eqb_neq in Ee).
    destruct (unref_step pre e post w E He Hun) as (w1 & -> & Hun1). pose proof (un_object _ _ _ _ _ Hun1) as (xob1 & size1 & Hxob1 & Hc1 & _).
    unfold ecma_op_container_remove_weak_entry. rewrite Hxob1, Hc1, (delete_middle id e.1 pre e post He eq_refl).
    set (e1 := (ecma_op_internal_buffer_delete id e).1). set (w2 := emit _ _). set (xob2 := with_class (CLASS_CONTAINER id (u32 (size1 - 1)) (map (emptied id) pre ++ e1 :: post)) xob1) in *.
    assert (Hxob2 : objects w2 !! x = Some xob2) by apply put_here. destruct (with_class_spec _ (CLASS_CONTAINER id (u32 (size1 - 1)) (map (emptied id) pre ++ e1 :: post)) xob1 Hc1) as (Hc2 & _). fold xob2 in Hc2.
    rewrite (container_entry_run w2 x xob2 id _ _ e1 post Hxob2 Hc2).
    assert (He1 : emptied id e = match id with WEAKMAP_UL => (EMPTY, EMPTY) | _ => (EMPTY, e1.2) end) by (unfold emptied, e1; rewrite Ee; now destruct Hid as [-> | ->]).
    assert (Hend : forall w3, effect w2 w3 -> (forall y, objects w3 !! y = objects w2 !! y) -> exists w', set_entry x (length (map (emptied id) pre)) (emptied id e) w3 = Some w' /\ unreferenced id (pre ++ [e]) post (pre ++ [e]) w').
    { intros w3 Hef3 H3. rewrite (set_entry_run w3 x xob2 id (u32 (size1 - 1)) _ e1 (emptied id e) post) by (rewrite ?H3; assumption). eexists. split; [reflexivity |].
      apply (unreferenced_class pre (e :: post) (pre ++ [e]) w1 _ (pre ++ [e]) post (u32 (size1 - 1)) xob1 Hun1 Hxob1).
      - transitivity w2; [etransitivity; [apply effect_put | apply effect_emit] |]. etransitivity; [exact Hef3 | apply effect_put].
      - intros y Hy. rewrite put_other by exact Hy. rewrite H3. unfold w2. cbn [emit objects]. now rewrite put_other.
      - rewrite put_here. unfold xob2. rewrite with_class_twice, map_app, <- app_assoc. reflexivity. }
    rewrite He1 in Hend. destruct Hid as [-> | ->]; apply Hend; try reflexivity. apply effect_emit.
Qed.

Lemma each_app {A} (step : A -> gworld -> option gworld) l1 l2 w : each step (l1 ++ l2) w = match each step l1 w with Some w => each step l2 w | None => None end.
Proof. revert w. induction l1 as [| a l1 IH]; intros w; [reflexivity |]. cbn [app each]. destruct (step a w); [apply IH | reflexivity]. Qed.

Lemma free_weak_entries_run post : forall pre w, entries = pre ++ post -> unreferenced id pre post pre w ->
  exists w', each (free_weak_entry id x) (seq (length pre) (length post)) w = Some w' /\ unreferenced id entries [] entries w'.
Proof.
  induction post as [| e post IH]; intros pre w E Hun; [exists w; rewrite app_nil_r in E; subst; now split |]. cbn [length seq each]. destruct (free_weak_entry_run pre e post w E Hun) as (w1 & -> & Hun1).
  destruct (IH (pre ++ [e]) w1) as (w2 & E2 & Hun2); [now rewrite <- app_assoc | exact Hun1 |]. rewrite length_app in E2. cbn [length] in E2. rewrite Nat.add_1_r in E2. exists w2. now split.
Qed.

Lemma release_weak_container : exists w1, ecma_op_container_free_entries x id entries w0 = Some w1 /\ class_released w1.
Proof.
  unfold ecma_op_container_free_entries. destruct (free_weak_entries_run entries [] w0 eq_refl) as (w1 & E & Hun).
  { constructor; [reflexivity | | intros y Hy; rewrite decide_False; [reflexivity | cbn; apply not_elem_of_nil]]. exists ob, size0. split; [exact Hx |]. split; [exact Hclass |]. rewrite decide_False by (cbn; apply not_elem_of_nil). now splits. }
  assert (Estep : match id with WEAKSET_UL | WEAKMAP_UL => free_weak_entry id x | SET_UL | MAP_UL => free_entry id x end = free_weak_entry id x) by (now destruct Hid as [-> | ->]).
  rewrite Estep. cbn [length] in E. rewrite E. destruct Hun as [Hef (xob & size & Hxob & Hc & Hp & Hn & Hh) Ho]. rewrite Hxob, Hc. eexists. split; [reflexivity |].
  destruct (with_class_spec _ (CLASS_CONTAINER id 0 (map (emptied id) entries ++ [])) xob Hc) as (_ & Hp' & _ & Hn' & _ & Hh').
  assert (Hin : forall z, z <> EMPTY -> In z (holder_keys ob) <-> z ∈ map fst entries) by (intros z Hz; rewrite keys_entries, in_nonempty by exact Hz; symmetry; apply list_elem_of_In).
  constructor; [etransitivity; [exact Hef | apply effect_put] | |].
  - eexists. split; [apply put_here |]. rewrite Hp', Hn', Hh'. split; [| now split]. rewrite Hp. destruct (decide (u ∈ map fst entries)) as [H | H]; [reflexivity |].
    pose proof (refs_of_others x ob Hx) as H'. specialize (H' (fun F => H (proj1 (Hin u (proj1 u_set)) F))). unfold clean_refs in H'. now apply (f_equal properties) in H'.
  - intros y Hy. rewrite put_other by exact Hy. rewrite (Ho y Hy). destruct (objects w0 !! y) as [oby |] eqn:Ey; [| now decide_all]. destruct (decide (value_of y ∈ map fst entries)) as [H | H]; [reflexivity |]. cbn. f_equal. symmetry.
    apply (refs_of_others y oby Ey). intros F. apply H. now apply (Hin (value_of y) (value_not_empty y (range_of y oby Ey))).
Qed.
End Entries.

(** *** Other containers *)

Lemma free_entries_same id size entries : class_of ob = Some (CLASS_CONTAINER id size entries) -> id = MAP_UL \/ id = SET_UL ->
  exists w1, ecma_op_container_free_entries x id entries w0 = Some w1 /\ class_released w1.
Proof.
  intros Hc Hid. unfold ecma_op_container_free_entries. replace (match id with WEAKSET_UL | WEAKMAP_UL => free_weak_entry id x | SET_UL | MAP_UL => free_entry id x end) with (free_entry id x) by (now destruct Hid as [-> | ->]).
  assert (Hloop : forall l w, effect w0 w -> (forall y, y <> x -> objects w !! y = objects w0 !! y) ->
    (exists xob size es, objects w !! x = Some xob /\ class_of xob = Some (CLASS_CONTAINER id size es) /\ length es = length entries /\ properties xob = properties ob /\ gc_next_cp xob = gc_next_cp ob /\ hashmap xob = hashmap ob) ->
    Forall (fun i => (i < length entries)%nat) l -> exists w', each (free_entry id x) l w = Some w' /\ effect w0 w' /\ (forall y, y <> x -> objects w' !! y = objects w0 !! y)
      /\ exists xob size es, objects w' !! x = Some xob /\ class_of xob = Some (CLASS_CONTAINER id size es) /\ properties xob = properties ob /\ gc_next_cp xob = gc_next_cp ob /\ hashmap xob = hashmap ob).
  { induction l as [| i l IH]; intros w Hef Ho (xob & sz & es & Hxob & Hcx & Hlen & Hp & Hn & Hh) Hl; [exists w; split; [reflexivity |]; split; [exact Hef |]; split; [exact Ho |]; exists xob, sz, es; now splits |].
    inversion Hl as [| ? ? Hi Hl']. subst. cbn [each]. rewrite <- Hlen in Hi. destruct (lookup_lt_is_Some_2 es i Hi) as [e He].
    assert (Hstep : exists w', free_entry id x i w = Some w' /\ effect w w' /\ (forall y, y <> x -> objects w' !! y = objects w !! y)
      /\ exists xob' es', objects w' !! x = Some xob' /\ class_of xob' = Some (CLASS_CONTAINER id sz es') /\ length es' = length es /\ properties xob' = properties xob /\ gc_next_cp xob' = gc_next_cp xob /\ hashmap xob' = hashmap xob).
    { unfold free_entry, container_entry. rewrite Hxob, Hcx, He. destruct (ecma_is_value_empty e.1); [exists w; split; [reflexivity |]; split; [reflexivity |]; split; [easy |]; now exists xob, es |].
      assert (Hset : forall w2 e', effect w w2 -> (forall y, objects w2 !! y = objects w !! y) -> exists w', set_entry x i e' w2 = Some w' /\ effect w w' /\ (forall y, y <> x -> objects w' !! y = objects w !! y)
        /\ exists xob' es', objects w' !! x = Some xob' /\ class_of xob' = Some (CLASS_CONTAINER id sz es') /\ length es' = length es /\ properties xob' = properties xob /\ gc_next_cp xob' = gc_next_cp xob /\ hashmap xob' = hashmap xob).
      { intros w2 e' Hef2 H2. unfold set_entry. rewrite H2, Hxob, Hcx. eexists. split; [reflexivity |]. split; [etransitivity; [exact Hef2 | apply effect_put] |]. split; [intros y Hy; rewrite put_other by exact Hy; apply H2 |].
        destruct (with_class_spec _ (CLASS_CONTAINER id sz (<[i := e']> es)) xob Hcx) as (Hc1 & Hp1 & _ & Hn1 & _ & Hh1). eexists _, _. split; [apply put_here |]. split; [exact Hc1 |]. split; [now rewrite length_insert | now splits]. }
      destruct Hid as [-> | ->]; apply Hset; try reflexivity; apply effect_emit. }
    destruct Hstep as (w' & -> & Hef' & Ho' & xob' & es' & Hxob' & Hc' & Hlen' & Hp' & Hn' & Hh'). apply (IH w'); [now transitivity w | intros y Hy; rewrite (Ho' y Hy); now apply Ho | | exact Hl'].
    exists xob', sz, es'. split; [exact Hxob' |]. split; [exact Hc' |]. splits; congruence. }
  destruct (Hloop (seq 0 (length entries)) w0) as (w1 & -> & Hef & Ho & xob & sz & es & Hxob & Hcx & Hp & Hn & Hh); [reflexivity | easy | exists ob, size, entries; now splits | |].
  { apply Forall_forall. intros i Hi. apply list_elem_of_In, in_seq in Hi. lia. }
  rewrite Hxob, Hcx. eexists. split; [reflexivity |]. destruct (with_class_spec _ (CLASS_CONTAINER id 0 es) xob Hcx) as (_ & Hp' & _ & Hn' & _ & Hh').
  apply class_released_same; [etransitivity; [exact Hef | apply effect_put] | unfold holder_keys; rewrite Hc; now destruct Hid as [-> | ->] | intros y Hy; rewrite put_other by exact Hy; now apply Ho |].
  eexists. split; [apply put_here |]. rewrite Hp', Hn', Hh'. now splits.
Qed.

Lemma class_released_emit w1 ev : class_released w1 -> class_released (emit ev w1).
Proof. intros [He Ho Hr]. constructor; [etransitivity; [exact He | apply effect_emit] | exact Ho | exact Hr]. Qed.

Lemma free_class_run default extra c : class_of ob = Some c -> class_ok w0 c = true -> exists w1 s n references, free_class x default extra c w0 = Some (w1, s, n, references) /\ class_released w1.
Proof.
  intros Hc Hok. assert (Hnone : class_keys c = [] -> holder_keys ob = []) by (intros H; unfold holder_keys; now rewrite Hc).
  assert (Hself : class_keys c = [] -> class_released w0) by (intros H; apply class_released_same; [reflexivity | now apply Hnone | easy | now exists ob]).
  assert (Hemit : class_keys c = [] -> forall ev, class_released (emit ev w0)) by (intros H ev; apply emit_released; now apply Hnone).
  assert (Hexec : forall e, class_keys c = [] -> is_some (ecma_gc_free_executable_object w0 e) = true ->
    exists w1 s n references, (match ecma_gc_free_executable_object w0 e with Some p => let '(ev, n) := p in Some (emit ev w0, sizeof_vm_executable_object_t, n, false) | None => None end) = Some (w1, s, n, references) /\ class_released w1).
  { intros e Hk He. destruct (ecma_gc_free_executable_object w0 e) as [[ev n] |]; [| discriminate]. eexists _, _, _, _. split; [reflexivity | now apply Hemit]. }
  destruct c; cbn [free_class class_keys class_ok] in *; try (eexists _, _, _, _; split; [reflexivity | now (apply Hemit || apply Hself)]); try (now apply Hexec).
  - destruct (flag_set typedarray_flags 1); eexists _, _, _, _; (split; [reflexivity | now apply Hemit]).
  - destruct id.
    + destruct (free_entries_same _ _ _ Hc (or_introl eq_refl)) as (w1 & -> & H). eexists _, _, _, _. split; [reflexivity | now apply class_released_emit].
    + destruct (free_entries_same _ _ _ Hc (or_intror eq_refl)) as (w1 & -> & H). eexists _, _, _, _. split; [reflexivity | now apply class_released_emit].
    + destruct (release_weak_container _ _ _ (or_introl eq_refl) Hc) as (w1 & -> & H). eexists _, _, _, _. split; [reflexivity | now apply class_released_emit].
    + destruct (release_weak_container _ _ _ (or_intror eq_refl) Hc) as (w1 & -> & H). eexists _, _, _, _. split; [reflexivity | now apply class_released_emit].
  - destruct (negb (flag_set array_buffer_flags 1)); eexists _, _, _, _; (split; [reflexivity | now apply Hemit]).
  - destruct (negb (flag_set array_buffer_flags 1)); eexists _, _, _, _; (split; [reflexivity | now apply Hemit]).
  - destruct (ecma_is_value_undefined target) eqn:Et; cbn [negb].
    + eexists _, _, _, _. split; [reflexivity | now apply Hemit].
    + destruct (release_weakref target Hc Et) as (w1 & -> & H). eexists _, _, _, _. split; [reflexivity | exact H].
Qed.
End Release.
