(* ===== verification/GcObject.v ===== *)
(** * The release of an object with its properties

    The holders that the object knows forget it while its properties are released; then the
    object is gone, and every other object is clean of it and else as before. *)
From Stdlib Require Import ZArith Lia Bool List.
From stdpp Require Import base gmap list.
From S2P Require Import Prelude JmemPointers Values PropNames GcHeap GcMark Gc GcFree GcSweep GcRelease.
Import ListNotations.
#[local] Open Scope Z_scope.

Lemma nodup_left (a b : list Z) : List.NoDup (a ++ b) -> List.NoDup a.
Proof. rewrite <- !NoDup_ListNoDup. intros H. now apply NoDup_app in H as (H & _ & _). Qed.

Lemma clean_slot_ok u s : slot_ok (clean_slot u s) = slot_ok s.
Proof. destruct s as [p n d]. unfold slot_ok, clean_slot. cbn. now destruct d. Qed.

Lemma clean_properties_ok u ps : forallb (fun p => slot_ok p.1 && slot_ok p.2) (clean_properties u ps) = forallb (fun p => slot_ok p.1 && slot_ok p.2) ps.
Proof. unfold clean_properties. induction ps as [| [s t] ps IH]; [reflexivity |]. cbn [map forallb fst snd]. now rewrite !clean_slot_ok, IH. Qed.

Lemma internal_not_raw p : ECMA_PROPERTY_IS_INTERNAL p = true -> ECMA_PROPERTY_IS_RAW p = false /\ (p =? ECMA_PROPERTY_TYPE_DELETED) = false.
Proof.
  unfold ECMA_PROPERTY_IS_INTERNAL, ECMA_PROPERTY_IS_RAW. change ECMA_PROPERTY_INTERNAL with 224. change ECMA_PROPERTY_TYPE_DELETED with 200. change (Z.shiftl ECMA_DIRECT_STRING_SPECIAL ECMA_PROPERTY_NAME_TYPE_SHIFT) with 192.
  rewrite Z.leb_le, Z.ltb_ge, Z.eqb_neq. lia.
Qed.

Section Properties.
Variable w0 : gworld.
Variable x : Z.
Variable ob : gc_object.
Hypothesis Hweak : weak_ok (objects w0).
Hypothesis Hx : objects w0 !! x = Some ob.

Abbreviation u := (value_of x).

(** The object after the release of its class, and what it knows still *)
Variable w1 : gworld.
Variable xob : gc_object.
Hypothesis Hothers : forall y, y <> x -> objects w1 !! y = clean_refs u <$> objects w0 !! y.
Hypothesis Hxob : objects w1 !! x = Some xob.
Hypothesis Hprops : properties xob = clean_properties u (properties ob).

Abbreviation refs_of s := (List.filter nonempty (concat (slot_buffer s))).
Abbreviation known := (List.filter (fun v => negb (v =? u)) (weak_refs ob)).

Lemma known_refs : weak_refs xob = known.
Proof. unfold weak_refs. rewrite Hprops, weak_buffers_clean, <- clean_values_filter. now rewrite concat_map. Qed.

Lemma known_holder v : In v known -> exists h hob, v = value_of h /\ h <> x /\ objects w0 !! h = Some hob /\ In u (holder_keys hob).
Proof.
  rewrite filter_In. intros [H Hv]. destruct (wo_refs _ Hweak x ob v Hx H) as (h & hob & -> & Hh & Hk). exists h, hob. split; [reflexivity |]. split; [| now split]. intros ->. now rewrite Z.eqb_refl in Hv.
Qed.

(** The holders in [D] have forgotten the object *)
Record forgotten (D : list Z) (w : gworld) : Prop := {
  fg_effect : effect w1 w;
  fg_object : objects w !! x = Some xob;
  fg_others : forall y, y <> x -> objects w !! y = (if decide (value_of y ∈ D) then clean u <$> objects w0 !! y else clean_refs u <$> objects w0 !! y)
}.

Lemma forgotten_start : forgotten [] w1.
Proof. constructor; [reflexivity | exact Hxob |]. intros y Hy. rewrite decide_False by apply not_elem_of_nil. now apply Hothers. Qed.

Lemma forgotten_emit D w ev : forgotten D w -> forgotten D (emit ev w).
Proof. intros [E O R]. constructor; [etransitivity; [exact E | apply effect_emit] | exact O | exact R]. Qed.

(** One holder *)
Lemma forget_one D w v : forgotten D w -> In v known -> ~ In v D -> exists w', free_weak_ref x v w = Some w' /\ forgotten (D ++ [v]) w'.
Proof.
  intros [He Ho Hr] Hv HD. destruct (known_holder v Hv) as (h & hob & -> & Hne & Hh & Hk). pose proof (range_of w0 Hweak h hob Hh) as Rh. destruct (u_set w0 x ob Hweak Hx) as [Hu _].
  assert (Hcur : objects w !! h = Some (clean_refs u hob)) by (rewrite (Hr h Hne), decide_False by (now rewrite list_elem_of_In); now rewrite Hh).
  assert (Hdone : forall ev, forgotten (D ++ [value_of h]) (emit ev (put h (clean u hob) w))).
  { intros ev. apply forgotten_emit. constructor; [etransitivity; [exact He | apply effect_put] | rewrite put_other by congruence; exact Ho |]. intros y Hy. destruct (decide (y = h)) as [-> | Hyh].
    - rewrite put_here, decide_True by (rewrite elem_of_app, list_elem_of_singleton; now right). now rewrite Hh.
    - rewrite put_other by exact Hyh. rewrite (Hr y Hy). destruct (objects w0 !! y) as [oby |] eqn:Ey; [| now decide_all]. assert (Hyv : value_of y <> value_of h) by (intros E; apply Hyh; apply value_inj; [exact (range_of w0 Hweak y oby Ey) | exact Rh | exact E]).
      destruct (decide (value_of y ∈ D)) as [H | H]; [rewrite decide_True; [reflexivity |] | rewrite decide_False; [reflexivity |]]; rewrite elem_of_app, list_elem_of_singleton; tauto. }
  assert (Hset : ecma_is_value_empty (value_of h) = false) by (apply Z.eqb_neq; exact (value_not_empty h Rh)).
  unfold free_weak_ref. rewrite Hset, (value_object h Rh), Hcur.
  unfold holder_keys in Hk. rewrite (proj1 (clean_refs_holder u hob)). destruct (class_of hob) as [c |] eqn:Ec; [| easy]. destruct c; try easy.
  - assert (Hid : id = WEAKMAP_UL \/ id = WEAKSET_UL) by (destruct id; cbn in Hk; tauto).
    destruct (remove_weak_entry_run w h (clean_refs u hob) id size entries u Hcur Ec Hid Hu) as [ev E].
    + change (List.NoDup (holder_keys hob)). apply (wo_nodup _ Hweak h hob Hh).
    + unfold holder_keys. rewrite (proj1 (clean_refs_holder u hob)), Ec. exact Hk.
    + exists (emit ev (put h (clean u hob) w)). split; [exact E | apply Hdone].
  - assert (Et : target = u) by (cbn [class_keys] in Hk; destruct (ecma_is_value_undefined target); [easy | now destruct Hk]). subst target.
    exists (emit [] (put h (clean u hob) w)). split; [| apply Hdone]. f_equal. unfold clean, clean_holder. rewrite (proj1 (clean_refs_holder u hob)), Ec. cbn [clean_class]. rewrite Z.eqb_refl. unfold emit. cbn. now rewrite app_nil_r.
Qed.

Lemma forget_buffer buffer : forall D w, forgotten D w -> (forall v, In v buffer -> v <> EMPTY -> In v known) -> List.NoDup (D ++ List.filter nonempty buffer) ->
  exists w', each (free_weak_ref x) buffer w = Some w' /\ forgotten (D ++ List.filter nonempty buffer) w'.
Proof.
  induction buffer as [| v buffer IH]; intros D w Hw Hin Hnd; cbn [each List.filter] in *; [exists w; rewrite app_nil_r; now split |].
  destruct (nonempty v) eqn:Hv.
  - destruct (forget_one D w v Hw) as (w2 & -> & Hw2); [apply Hin; [now left | now apply nonempty_true] | apply NoDup_remove_2 in Hnd; rewrite in_app_iff in Hnd; tauto |].
    replace (D ++ v :: List.filter nonempty buffer) with ((D ++ [v]) ++ List.filter nonempty buffer) in * by now rewrite <- app_assoc. apply IH; [exact Hw2 | intros; apply Hin; [now right | assumption] | exact Hnd].
  - unfold free_weak_ref at 1. unfold nonempty in Hv. apply negb_false_iff in Hv. rewrite Hv. apply IH; [exact Hw | intros; apply Hin; [now right | assumption] | exact Hnd].
Qed.

Lemma forget_slot free_references second D w s : slot_ok s = true -> forgotten D w -> (forall v, In v (refs_of s) -> In v known) -> List.NoDup (D ++ refs_of s) ->
  exists w', ecma_gc_free_property x free_references second s w = Some w' /\ forgotten (D ++ refs_of s) w'.
Proof.
  intros Hok Hw Hin Hnd. unfold ecma_gc_free_property. set (w2 := if flag_set _ _ then _ else w). assert (Hw2 : forgotten D w2) by (unfold w2; destruct (flag_set _ _); [now apply forgotten_emit | exact Hw]). clearbody w2. clear Hw.
  set (w3 := if ECMA_PROPERTY_GET_NAME_TYPE _ =? _ then _ else w2). assert (Hw3 : forgotten D w3) by (unfold w3; destruct (_ =? _); [now apply forgotten_emit | exact Hw2]). clearbody w3.
  destruct s as [p n d]. unfold slot_ok, slot_buffer in *. cbn [data property] in *.
  assert (Hinternal : ECMA_PROPERTY_IS_INTERNAL p = true -> (forall buffer, d <> WEAK_REFS buffer) -> is_some (free_internal x (mk_slot p n d) w2) = true ->
    exists w', (if ECMA_PROPERTY_IS_RAW p then (if flag_set p ECMA_PROPERTY_FLAG_DATA then match d with DATA value => Some (emit [FREE_VALUE_IF_NOT_OBJECT value] w3) | _ => None end
      else if free_references then Some w3 else Some (emit [FREE_PROPERTY_BLOCK d] w3)) else if p =? ECMA_PROPERTY_TYPE_DELETED then Some w2 else free_internal x (mk_slot p n d) w2) = Some w' /\ forgotten D w').
  { intros Hi Hd Hs. destruct (internal_not_raw p Hi) as [-> ->]. unfold free_internal in *. cbn [data property] in *. destruct d; try discriminate; try (eexists; split; [reflexivity | now apply forgotten_emit]). now destruct (Hd buffer). }
  destruct d; cbn [concat List.filter app] in *; rewrite ?app_nil_r in *; try (apply Hinternal; [exact Hok | easy | reflexivity]).
  - apply andb_true_iff in Hok as [-> ->]. eexists. split; [reflexivity | now apply forgotten_emit].
  - apply andb_true_iff in Hok as [-> Hf]. apply negb_true_iff in Hf as ->. destruct free_references; eexists; (split; [reflexivity | try exact Hw3; now apply forgotten_emit]).
  - apply andb_true_iff in Hok as [-> Hf]. apply negb_true_iff in Hf as ->. destruct free_references; eexists; (split; [reflexivity | try exact Hw3; now apply forgotten_emit]).
  - apply Z.eqb_eq in Hok as ->. change (ECMA_PROPERTY_IS_RAW ECMA_PROPERTY_TYPE_DELETED) with false. rewrite Z.eqb_refl. now exists w2.
  - destruct (internal_not_raw p Hok) as [-> ->]. unfold free_internal. cbn [data]. destruct (forget_buffer buffer D w2 Hw2) as (w4 & -> & Hw4); [intros v Hv Hne; apply Hin; now apply in_nonempty | exact Hnd |].
    eexists. split; [reflexivity | now apply forgotten_emit].
Qed.

Abbreviation pair_refs ps := (List.filter nonempty (concat (weak_buffers ps))).

Lemma pair_refs_cons s t ps : pair_refs ((s, t) :: ps) = refs_of s ++ refs_of t ++ pair_refs ps.
Proof. unfold weak_buffers. cbn [flat_map fst snd]. now rewrite !concat_app, !List.filter_app, <- app_assoc. Qed.

Lemma free_pairs_run free_references post : forall pre D w, properties xob = pre ++ post -> forallb (fun p => slot_ok p.1 && slot_ok p.2) post = true -> forgotten D w ->
  (forall v, In v (pair_refs post) -> In v known) -> List.NoDup (D ++ pair_refs post) ->
  exists w', each (free_pair x free_references) (seq (length pre) (length post)) w = Some w' /\ forgotten (D ++ pair_refs post) w'.
Proof.
  induction post as [| [s t] post IH]; intros pre D w Ep Hok Hw Hin Hnd; [exists w; cbn; rewrite app_nil_r; now split |]. rewrite pair_refs_cons in *. cbn [forallb fst snd] in Hok. apply andb_true_iff in Hok as [Hst Hok]. apply andb_true_iff in Hst as [Hs Ht].
  assert (Hslot : forall w second, objects w !! x = Some xob -> free_slot x free_references (length pre) second w = ecma_gc_free_property x free_references second (if second then t else s) w).
  { intros w' second Hw'. unfold free_slot. rewrite Hw', Ep, list_lookup_middle by reflexivity. now destruct second. }
  cbn [length seq each]. unfold free_pair at 1. rewrite Hslot by exact (fg_object _ _ Hw).
  destruct (forget_slot free_references false D w s Hs Hw) as (w2 & -> & Hw2); [intros v Hv; apply Hin; rewrite in_app_iff; now left | rewrite app_assoc in Hnd; exact (nodup_left _ _ Hnd) |].
  rewrite Hslot by exact (fg_object _ _ Hw2).
  destruct (forget_slot free_references true (D ++ refs_of s) w2 t Ht Hw2) as (w3 & -> & Hw3); [intros v Hv; apply Hin; rewrite !in_app_iff; tauto | rewrite !app_assoc in Hnd; exact (nodup_left _ _ Hnd) |].
  destruct (IH (pre ++ [(s, t)]) ((D ++ refs_of s) ++ refs_of t) (emit [FREE_PAIR x] w3)) as (w4 & E4 & Hw4);
    [rewrite <- app_assoc; exact Ep | exact Hok | now apply forgotten_emit | intros v Hv; apply Hin; rewrite !in_app_iff; tauto | now rewrite <- !app_assoc |].
  rewrite length_app, Nat.add_1_r in E4. exists w4. split; [exact E4 |]. now rewrite <- !app_assoc in Hw4.
Qed.

Lemma free_properties_run free_references : forallb (fun p => slot_ok p.1 && slot_ok p.2) (properties ob) = true ->
  exists w', ecma_gc_free_properties x free_references w1 = Some w' /\ effect w1 w' /\ objects w' !! x = Some xob /\ (forall y, y <> x -> objects w' !! y = clean u <$> objects w0 !! y).
Proof.
  intros Hok. unfold ecma_gc_free_properties. rewrite Hxob. set (w2 := if hashmap xob then _ else w1). assert (Hw2 : forgotten [] w2) by (unfold w2; destruct (hashmap xob); [apply forgotten_emit |]; apply forgotten_start). clearbody w2.
  destruct (free_pairs_run free_references (properties xob) [] [] w2 eq_refl) as (w3 & E & [He Ho Hr]).
  - now rewrite Hprops, clean_properties_ok.
  - exact Hw2.
  - intros v. fold (weak_refs xob). now rewrite known_refs.
  - cbn [app]. fold (weak_refs xob). rewrite known_refs. apply List.NoDup_filter, (wo_nodup _ Hweak x ob Hx).
  - exists w3. split; [exact E |]. split; [exact He |]. split; [exact Ho |]. intros y Hy. rewrite (Hr y Hy). cbn [app]. fold (weak_refs xob). rewrite known_refs. destruct (decide (value_of y ∈ known)) as [H | H]; [reflexivity |].
    destruct (objects w0 !! y) as [oby |] eqn:Ey; [| reflexivity]. cbn. f_equal. unfold clean. symmetry. destruct (u_set w0 x ob Hweak Hx) as [Hu Hu']. apply clean_holder_id; [exact Hu | exact Hu' |].
    apply (keys_of_others w0 x ob Hweak Hx y oby Ey). intros F. apply H. rewrite list_elem_of_In, filter_In. split; [exact F |]. apply negb_true_iff, Z.eqb_neq. intros E'. apply Hy. apply value_inj; [exact (range_of w0 Hweak y oby Ey) | exact (x_range w0 x ob Hweak Hx) | exact E'].
Qed.
End Properties.

(** ** Objects *)

Section Object.
Variable w0 : gworld.
Variable x : Z.
Variable ob : gc_object.
Hypothesis Hweak : weak_ok (objects w0).
Hypothesis Hx : objects w0 !! x = Some ob.
Hypothesis Hslots : forallb (fun p => slot_ok p.1 && slot_ok p.2) (properties ob) = true.

Record gone (w' : gworld) : Prop := {
  go_effect : effect w0 w';
  go_objects : forall y, objects w' !! y = if decide (y = x) then None else clean (value_of x) <$> objects w0 !! y
}.

Lemma dealloc_run w s extra : effect w0 w -> is_Some (objects w !! x) -> (forall y, y <> x -> objects w !! y = clean (value_of x) <$> objects w0 !! y) -> exists w', dealloc x s extra w = Some w' /\ gone w'.
Proof.
  intros He [xob Hxob] Ho. unfold dealloc. rewrite Hxob. eexists. split; [reflexivity |]. constructor.
  - etransitivity; [exact He |]. etransitivity; [| apply effect_emit]. constructor; try reflexivity. exists []. cbn. now rewrite app_nil_r.
  - intros y. cbn [emit set_objects objects]. destruct (decide (y = x)) as [-> | Hne]; [apply lookup_delete_eq | rewrite lookup_delete_ne by congruence; now apply Ho].
Qed.

Lemma free_rest_run w1 references s extra : class_released w0 x ob w1 -> exists w', free_rest x references s extra w1 = Some w' /\ gone w'.
Proof.
  intros [He (xob & Hxob & Hp & _) Ho]. unfold free_rest. destruct (free_properties_run w0 x ob Hweak Hx w1 xob Ho Hxob Hp references Hslots) as (w2 & -> & He2 & Hx2 & Ho2).
  apply dealloc_run; [now transitivity w1 | now exists xob | exact Ho2].
Qed.

(** Objects that nothing knows, and that know nothing *)
Lemma dealloc_plain ev s extra : no_weak_refs ob = true -> holder_keys ob = [] -> exists w', dealloc x s extra (emit ev w0) = Some w' /\ gone w'.
Proof.
  intros Hn Hk. apply dealloc_run; [apply effect_emit | now exists ob |]. intros y Hy. cbn [emit objects]. destruct (objects w0 !! y) as [oby |] eqn:Ey; [| reflexivity]. cbn. f_equal. symmetry.
  destruct (u_set w0 x ob Hweak Hx) as [Hu Hu']. unfold clean. rewrite (refs_of_others w0 x ob Hweak Hx y oby Ey) by (now rewrite Hk). apply clean_holder_id; [exact Hu | exact Hu' |].
  apply (keys_of_others w0 x ob Hweak Hx y oby Ey). unfold weak_refs. unfold no_weak_refs in Hn. destruct (weak_buffers (properties ob)); [easy | discriminate].
Qed.

Lemma finish_run ev s extra : holder_keys ob = [] -> exists w', free_rest x false s extra (emit ev w0) = Some w' /\ gone w'.
Proof. intros Hk. apply free_rest_run. now apply emit_released. Qed.

Lemma fast_array_run a : array_ok ob a = true -> ecma_op_array_is_fast_array a = true -> holder_keys ob = [] -> exists w', ecma_free_fast_access_array x a w0 = Some w' /\ gone w'.
Proof.
  unfold array_ok, ecma_free_fast_access_array. intros Ha Hf Hk. rewrite Hf in Ha. cbn [negb orb] in Ha. apply andb_true_iff in Ha as [Hn Hv]. destruct (array_values a) as [values |]; [rewrite Hv |]; now apply dealloc_plain.
Qed.
End Object.

Lemma emit_nil w : emit [] w = w.
Proof. destruct w. unfold emit. cbn. now rewrite app_nil_r. Qed.

(** [released w x w']: the object is gone, the others are clean of it *)
Record released (w : gworld) (x : Z) (w' : gworld) : Prop := {
  re_effect : effect (count_down w) w';
  re_objects : forall y, objects w' !! y = if decide (y = x) then None else clean (value_of x) <$> objects w !! y
}.

Lemma free_object_run w x ob : weak_ok (objects w) -> objects w !! x = Some ob -> releasable w ob = true -> exists w', ecma_gc_free_object x w = Some w' /\ released w x w'.
Proof.
  intros Hweak Hx Hok. unfold releasable in Hok. apply andb_true_iff in Hok as [Hbody Hslots].
  cut (exists w', ecma_gc_free_object x w = Some w' /\ gone (count_down w) x w'); [intros (w' & E & [He Ho]); exists w'; split; [exact E | now constructor] |].
  change (objects w) with (objects (count_down w)) in Hweak, Hx. unfold ecma_gc_free_object. change (objects w) with (objects (count_down w)). rewrite Hx. set (wc := count_down w) in *. change (codes w) with (codes wc).
  assert (Hbody' : body_ok wc ob = true) by exact Hbody. clear Hbody. clearbody wc. unfold body_ok in Hbody'.
  assert (Hnone : class_of ob = None -> holder_keys ob = []) by (unfold holder_keys; now intros ->). unfold class_of in Hnone.
  assert (Hfinish : forall ev s extra, holder_keys ob = [] -> exists w', free_rest x false s extra (emit ev wc) = Some w' /\ gone wc x w') by (intros; now apply (finish_run wc x ob)).
  assert (Hstart : forall references s extra, holder_keys ob = [] -> exists w', free_rest x references s extra wc = Some w' /\ gone wc x w') by (intros references s extra Hk; apply (free_rest_run wc x ob Hweak Hx Hslots); pose proof (emit_released wc x ob Hweak Hx [] Hk) as Hr; now rewrite emit_nil in Hr).
  assert (Hplain : forall s extra, no_weak_refs ob = true -> holder_keys ob = [] -> exists w', dealloc x s extra wc = Some w' /\ gone wc x w') by (intros s extra Hn Hk; pose proof (dealloc_plain wc x ob Hweak Hx [] s extra Hn Hk) as Hr; now rewrite emit_nil in Hr).
  assert (Hclass : forall default extra c, class_of ob = Some c -> class_ok wc c = true -> exists w', (match free_class x default extra c wc with Some p => let '(w1, s, n, references) := p in free_rest x references s n w1 | None => None end) = Some w' /\ gone wc x w').
  { intros default extra c Hc Hcok. destruct (free_class_run wc x ob Hweak Hx default extra c Hc Hcok) as (w1 & s & n & references & -> & Hr). now apply (free_rest_run wc x ob). }
  unfold class_of in Hclass. destruct (body ob) as [| type object_p | | | | b g | c | b c | a | b a | | scope static code arrow | b h | tf al tl args | |] eqn:Eb; try (now apply Hstart; auto); try (now apply Hplain; auto).
  - destruct (type =? ECMA_LEX_ENV_CLASS_TYPE_MODULE); [change (exists w', free_rest x true sizeof_ecma_lexical_environment_class_t 0 wc = Some w' /\ gone wc x w'); apply Hstart; auto | apply Hplain; auto].
  - destruct g; apply Hstart; auto.
  - now apply Hclass.
  - now apply Hclass.
  - destruct (ecma_op_array_is_fast_array a) eqn:Ea; [apply (fast_array_run wc x ob); auto | apply Hstart; auto].
  - destruct (ecma_op_array_is_fast_array a) eqn:Ea; [apply (fast_array_run wc x ob); auto | apply Hstart; auto].
  - destruct static; cbn [negb orb] in *; [apply Hstart; auto |]. destruct (codes wc !! code) as [cc |]; [| discriminate]. destruct (CBC_FUNCTION_IS_ARROW _); apply Hfinish; auto.
  - destruct (routine_id b =? 0); [apply Hstart; auto |]. destruct h as [h |]; [| apply Hstart; auto]. destruct (free_handler h) as [ev s]. apply Hfinish; auto.
  - destruct (free_bound_function al tl args) as [[ev n] |]; [apply Hfinish; auto | discriminate].
  - apply Hfinish; auto.
Qed.
