(* ===== verification/GcClean.v ===== *)
(** * Marking after a release

    When an object is released, the others make the visits that they made before, without
    those that asked whether the object is visited. *)
From Stdlib Require Import ZArith Lia Bool List.
From stdpp Require Import base gmap list.
From S2P Require Import Prelude JmemPointers Values PropNames GcHeap GcMark Gc GcFree GcSweep GcRelease GcObject.
Import ListNotations.
#[local] Open Scope Z_scope.
#[local] Open Scope partial_scope.

(** The visits that stay when [x] is gone *)
Definition keep (x : Z) (v : visit) : bool := match v with VISIT _ => true | VISIT_IF_VISITED k _ => negb (k =? x) end.
Abbreviation kept x vs := (List.filter (keep x) vs).

Definition is_visit (v : visit) : bool := match v with VISIT _ => true | _ => false end.
Definition plain (vs : list visit) : Prop := forallb is_visit vs = true.

Lemma plain_kept x vs : plain vs -> kept x vs = vs.
Proof.
  unfold plain. induction vs as [| v vs IH]; intros H; [reflexivity |]. cbn [forallb List.filter] in *. apply andb_true_iff in H as [Hv H]. destruct v; [| discriminate]. cbn [keep]. now rewrite (IH H).
Qed.

Create HintDb plain.

Lemma plain_nil : plain [].
Proof. reflexivity. Qed.

Lemma plain_cons o vs : plain vs -> plain (VISIT o :: vs).
Proof. intros H. exact H. Qed.

Lemma plain_app a b : plain a -> plain b -> plain (a ++ b).
Proof. unfold plain. intros Ha Hb. now rewrite forallb_app, Ha, Hb. Qed.

Lemma plain_flat_map {A} (f : A -> list visit) l : (forall a, plain (f a)) -> plain (flat_map f l).
Proof. intros Hf. induction l as [| a l IH]; [reflexivity |]. cbn [flat_map]. now apply plain_app. Qed.

Lemma plain_if (b : bool) x y : plain x -> plain y -> plain (if b then x else y).
Proof. now destruct b. Qed.

Lemma plain_value v : plain (visit_value v).
Proof. reflexivity. Qed.

Lemma plain_object v : plain (visit_if_object v).
Proof. unfold visit_if_object. now destruct (ecma_is_value_object v). Qed.

Lemma plain_set v : plain (visit_if_set v).
Proof. unfold visit_if_set. now destruct (v =? JMEM_CP_NULL). Qed.

Lemma plain_option v : plain (visit_option v).
Proof. now destruct v. Qed.

#[export] Hint Resolve plain_nil plain_cons plain_app plain_flat_map plain_if plain_value plain_object plain_set plain_option : plain.

Lemma plain_values l : plain (visit_values l).
Proof. apply plain_flat_map. auto with plain. Qed.

#[export] Hint Resolve plain_values : plain.

Lemma plain_visit_all {A} (f : A -> option (list visit)) l vs : (forall a v, f a = Some v -> plain v) -> visit_all f l = Some vs -> plain vs.
Proof.
  intros Hf. revert vs. induction l as [| a l IH]; intros vs; cbn [visit_all]; [now intros [= <-] |]. destruct (f a) as [v |] eqn:E; [| discriminate]. destruct (visit_all f l) as [w |]; [| discriminate].
  intros [= <-]. apply plain_app; [exact (Hf a v E) | now apply IH].
Qed.

Lemma plain_code w cp vs : ecma_gc_mark_compiled_code w cp = Some vs -> plain vs.
Proof. unfold ecma_gc_mark_compiled_code. destruct (scripts w !! cp); [| discriminate]. intros [= <-]. auto 6 with plain. Qed.

Lemma plain_mark_code w cp vs : mark_code w cp = Some vs -> plain vs.
Proof. unfold mark_code. destruct (codes w !! cp); [apply plain_code | discriminate]. Qed.

Lemma plain_native item vs : mark_native_pointer item = Some vs -> plain vs.
Proof. unfold mark_native_pointer. destruct (has_info item); [| discriminate]. destruct (references item); [discriminate |]. intros [= <-]. auto with plain. Qed.

Lemma plain_private fuel : forall items, (length items <= fuel)%nat -> plain (mark_private_elements items).
Proof.
  induction fuel as [| fuel IH]; intros [| a [| b [| c items]]] H; try reflexivity; cbn [length] in H; [lia |]. cbn [mark_private_elements]. apply plain_app; [auto with plain | apply IH; lia].
Qed.

Lemma plain_reactions fuel : forall buffer vs, (length buffer <= fuel)%nat -> mark_reactions buffer = Some vs -> plain vs.
Proof.
  induction fuel as [| fuel IH]; intros [| a buffer] vs H; try (now intros [= <-]); cbn [length] in H; [lia |]. cbn [mark_reactions].
  destruct (if _ && _ then _ else _) as [vs1 |] eqn:E1; [| discriminate]. intros [= <-]. apply plain_cons.
  destruct (flag_set a 1 && flag_set a 2).
  - destruct buffer as [| b [| c buffer]]; try discriminate. cbn [length] in H. destruct (mark_reactions buffer) as [vs2 |] eqn:E2; [| discriminate]. injection E1 as <-. apply plain_cons, plain_cons, (IH buffer); [lia | exact E2].
  - destruct (flag_set a 1 || flag_set a 2); [| apply (IH buffer); [lia | exact E1]]. destruct buffer as [| b buffer]; try discriminate. cbn [length] in H.
    destruct (mark_reactions buffer) as [vs2 |] eqn:E2; [| discriminate]. injection E1 as <-. apply plain_cons, (IH buffer); [lia | exact E2].
Qed.

Lemma plain_contexts fuel : forall context vs, mark_contexts fuel context = Some vs -> plain vs.
Proof.
  induction fuel as [| fuel IH]; intros [| word items] vs; cbn [mark_contexts]; try (now intros [= <-]). destruct (VM_CONTEXT_IS_VARIABLE_LENGTH _).
  - destruct (_ <=? _)%nat; [| discriminate]. destruct (mark_contexts fuel _) as [vs2 |] eqn:E2; [| discriminate]. intros [= <-]. apply plain_app; [auto with plain | exact (IH _ _ E2)].
  - destruct (context_offsets 4 _) as [offsets sz]. destruct (visit_all _ offsets) as [here |] eqn:E1; [| discriminate]. destruct (mark_contexts fuel _) as [vs2 |] eqn:E2; [| discriminate]. intros [= <-].
    apply plain_app; [| exact (IH _ _ E2)]. revert E1. apply plain_visit_all. intros offset v E. cbn in E. destruct ((word :: items) !! Z.to_nat (offset - 1)); [| discriminate]. injection E as <-. auto with plain.
Qed.

Lemma plain_executable w e vs : ecma_gc_mark_executable_object w e = Some vs -> plain vs.
Proof.
  unfold ecma_gc_mark_executable_object. set (queue := if flag_set _ _ then flat_map _ _ else []). assert (Hq : plain queue) by (unfold queue; destruct (flag_set _ _); [apply plain_flat_map; intros t |]; auto with plain). clearbody queue.
  destruct (_ && _); [intros [= <-]; apply plain_app; [exact Hq | reflexivity] |]. destruct (codes w !! _) as [c |]; [| discriminate]. destruct (_ <=? _)%nat; [| discriminate].
  destruct (mark_contexts _ _) as [contexts |] eqn:Ec; [| discriminate]. intros [= <-]. apply plain_contexts in Ec. auto 12 with plain.
Qed.

Lemma plain_global g : plain (ecma_gc_mark_global_object g).
Proof. unfold ecma_gc_mark_global_object. auto 12 with plain. Qed.

Lemma plain_handler h : plain (mark_handler h).
Proof. destruct h; cbn [mark_handler]; auto with plain. Qed.

Lemma plain_bound t l args vs : ecma_gc_mark_bound_function_object t l args = Some vs -> plain vs.
Proof. unfold ecma_gc_mark_bound_function_object. destruct (negb _); [| destruct (_ <=? _)%nat; [| discriminate]]; intros [= <-]; auto with plain. Qed.

#[export] Hint Resolve plain_global plain_handler : plain.

Section Clean.
Variables w w' : gworld.
Variable x : Z.
Variable ob : gc_object.
Hypothesis Hweak : weak_ok (objects w).
Hypothesis Hx : objects w !! x = Some ob.
Hypothesis Hcodes : codes w' = codes w.
Hypothesis Hscripts : scripts w' = scripts w.
Hypothesis Hobjects : forall y, objects w' !! y = if decide (y = x) then None else clean (value_of x) <$> objects w !! y.

Abbreviation u := (value_of x).

Lemma visit_all_clean {A B} (f : A -> option (list visit)) (g : B -> option (list visit)) (h : A -> B) l : (forall a v, In a l -> f a = Some v -> g (h a) = Some (kept x v)) ->
  forall vs, visit_all f l = Some vs -> visit_all g (map h l) = Some (kept x vs).
Proof.
  induction l as [| a l IH]; intros Hf vs; cbn [visit_all map]; [now intros [= <-] |]. destruct (f a) as [v |] eqn:E; [| discriminate]. destruct (visit_all f l) as [vs2 |]; [| discriminate]. intros [= <-].
  rewrite (Hf a v (or_introl eq_refl) E), (IH (fun a v H => Hf a v (or_intror H)) vs2 eq_refl). now rewrite List.filter_app.
Qed.

(** ** Weak references *)

Lemma u_is_set : ecma_is_value_empty u = false.
Proof. apply Z.eqb_neq. exact (proj1 (u_set w x ob Hweak Hx)). Qed.

Lemma find_clean entries key e : key <> u -> key <> EMPTY -> ecma_op_internal_buffer_find entries key = Some e -> ecma_op_internal_buffer_find (map (clean_entry WEAKMAP_UL u) entries) key = Some e.
Proof.
  intros Hk Hk'. unfold ecma_op_internal_buffer_find. induction entries as [| e' entries IH]; [discriminate |]. cbn [List.find map].
  assert (Hc : clean_entry WEAKMAP_UL u e' = e' \/ (e'.1 = u /\ (clean_entry WEAKMAP_UL u e').1 = EMPTY)) by (unfold clean_entry; destruct (Z.eqb_spec e'.1 u); auto).
  destruct Hc as [-> | [Eu ->]]; [destruct (e'.1 =? key); [easy | exact IH] |]. rewrite Eu, (proj2 (Z.eqb_neq u key)), (proj2 (Z.eqb_neq EMPTY key)) by congruence. exact IH.
Qed.

Lemma weakmap_clean oby : weakmap_entries (clean u oby) = map (clean_entry WEAKMAP_UL u) <$> weakmap_entries oby.
Proof.
  unfold weakmap_entries, clean. destruct (clean_holder_spec u (clean_refs u oby)) as (_ & -> & _). rewrite (proj1 (clean_refs_holder u oby)). destruct (class_of oby) as [c |]; [| reflexivity]. destruct c; try reflexivity; [now destruct id |]. cbn. now destruct (target =? u).
Qed.

Lemma weak_ref_clean y oby v vs : y <> x -> objects w !! y = Some oby -> (v <> EMPTY -> In v (weak_refs oby)) -> mark_weak_ref w y v = Some vs -> mark_weak_ref w' y (clean_value u v) = Some (kept x vs).
Proof.
  intros Hne Hy Hv. destruct (u_set w x ob Hweak Hx) as [Hu _]. unfold mark_weak_ref, clean_value. destruct (Z.eqb_spec v u) as [-> | Hvu].
  - change (ecma_is_value_empty EMPTY) with true. rewrite u_is_set, (value_object x (x_range w x ob Hweak Hx)), Hx. destruct (weakmap_entries ob) as [entries |]; [| now intros [= <-]].
    destruct (ecma_op_internal_buffer_find entries _) as [e |]; [| discriminate]. intros [= <-]. destruct (ecma_is_value_object e.2); [| reflexivity]. cbn [List.filter keep]. now rewrite Z.eqb_refl.
  - destruct (ecma_is_value_empty v) eqn:Ev; [now intros [= <-] |]. assert (Hv0 : v <> EMPTY) by (now apply Z.eqb_neq in Ev). destruct (wo_refs _ Hweak y oby v Hy (Hv Hv0)) as (h & hob & -> & Hh & _).
    pose proof (range_of w Hweak h hob Hh) as Rh. pose proof (range_of w Hweak y oby Hy) as Ry. rewrite (value_object h Rh), Hh. assert (Hhx : h <> x) by congruence. rewrite Hobjects, decide_False, Hh by exact Hhx. cbn [fmap option_fmap option_map]. rewrite weakmap_clean.
    destruct (weakmap_entries hob) as [entries |]; [| now intros [= <-]]. cbn [fmap option_fmap option_map]. destruct (ecma_op_internal_buffer_find entries (value_of y)) as [e |] eqn:Ef; [| discriminate].
    rewrite (find_clean entries (value_of y) e); [| intros E; apply Hne; exact (value_inj y x Ry (x_range w x ob Hweak Hx) E) | exact (value_not_empty y Ry) | exact Ef].
    intros [= <-]. destruct (ecma_is_value_object e.2); [| reflexivity]. cbn [List.filter keep]. now rewrite (proj2 (Z.eqb_neq _ _) Hhx).
Qed.

(** ** Properties *)

Lemma internal_clean y oby s vs : y <> x -> objects w !! y = Some oby -> (forall v, In v (concat (slot_buffer s)) -> v <> EMPTY -> In v (weak_refs oby)) ->
  mark_internal w y s = Some vs -> mark_internal w' y (clean_slot u s) = Some (kept x vs).
Proof.
  intros Hne Hy Hin. destruct s as [p n d]. unfold mark_internal, clean_slot, slot_buffer in *. cbn [data property name_cp] in *.
  assert (Hplain : forall o : option (list visit), (forall vs, o = Some vs -> plain vs) -> o = Some vs -> o = Some (kept x vs)) by (intros o Ho E; rewrite plain_kept; [exact E | now apply Ho]).
  destruct d; cbn [data property name_cp]; try (apply Hplain; intros vs' [= <-]; now auto with plain).
  - apply Hplain. intros vs' [= <-]. exact (plain_private _ items (le_n _)).
  - apply visit_all_clean. intros v vs' Hv. apply (weak_ref_clean y oby); [exact Hne | exact Hy |]. intros H. apply Hin; [cbn; now rewrite app_nil_r | exact H].
  - apply Hplain. intros vs'. destruct (flag_set p ECMA_PROPERTY_FLAG_SINGLE_EXTERNAL); [destruct items; [discriminate | apply plain_native] | apply plain_visit_all; apply plain_native].
Qed.

Lemma slot_clean y oby references s vs : y <> x -> objects w !! y = Some oby -> (forall v, In v (concat (slot_buffer s)) -> v <> EMPTY -> In v (weak_refs oby)) ->
  mark_slot w y references s = Some vs -> mark_slot w' y references (clean_slot u s) = Some (kept x vs).
Proof.
  intros Hne Hy Hin. unfold mark_slot. assert (Ep : property (clean_slot u s) = property s) by (destruct s as [p n d]; unfold clean_slot; cbn; now destruct d). rewrite Ep.
  assert (Ed : (forall buffer, data s <> WEAK_REFS buffer) -> data (clean_slot u s) = data s) by (intros H; unfold clean_slot; destruct (data s) eqn:E; try (now rewrite E); now destruct (H buffer)).
  destruct (ECMA_PROPERTY_IS_RAW (property s)).
  - destruct (flag_set (property s) ECMA_PROPERTY_FLAG_DATA); [| destruct references; [now intros [= <-] |]]; (destruct (data s) eqn:E; try discriminate); rewrite Ed by easy; intros [= <-]; rewrite plain_kept; auto with plain.
  - destruct (negb (ECMA_PROPERTY_IS_INTERNAL (property s))); [now intros [= <-] |]. now apply (internal_clean y oby).
Qed.

Lemma properties_clean y oby references vs : y <> x -> objects w !! y = Some oby ->
  ecma_gc_mark_properties w y references (properties oby) = Some vs -> ecma_gc_mark_properties w' y references (clean_properties u (properties oby)) = Some (kept x vs).
Proof.
  intros Hne Hy. apply visit_all_clean. intros [s t] v Hin. cbn [fst snd].
  assert (Hs : forall q, q = s \/ q = t -> forall v, In v (concat (slot_buffer q)) -> v <> EMPTY -> In v (weak_refs oby)).
  { intros q Hq v' Hv' H. unfold weak_refs. rewrite in_nonempty by exact H. apply in_concat in Hv' as (b & Hb & Hv'). apply in_concat. exists b. split; [| exact Hv']. apply in_flat_map. exists (s, t). split; [exact Hin |]. cbn. rewrite in_app_iff. destruct Hq as [-> | ->]; tauto. }
  destruct (mark_slot w y references s) as [v1 |] eqn:E1; [| discriminate]. destruct (mark_slot w y references t) as [v2 |] eqn:E2; [| discriminate]. intros [= <-].
  rewrite (slot_clean y oby references s v1 Hne Hy (Hs s (or_introl eq_refl)) E1), (slot_clean y oby references t v2 Hne Hy (Hs t (or_intror eq_refl)) E2). now rewrite List.filter_app.
Qed.

(** ** Classes *)

Lemma weakmap_visits_clean entries : (forall v, In v (map fst entries) -> v <> EMPTY -> exists k, v = value_of k /\ 0 < k < 536870912) ->
  ecma_gc_mark_weakmap_object (map (clean_entry WEAKMAP_UL u) entries) = kept x (ecma_gc_mark_weakmap_object entries).
Proof.
  intros Hk. destruct (u_set w x ob Hweak Hx) as [Hu _]. unfold ecma_gc_mark_weakmap_object. induction entries as [| e entries IH]; [reflexivity |]. cbn [map flat_map]. rewrite List.filter_app, IH by (intros v Hv; apply Hk; now right). f_equal. clear IH.
  unfold clean_entry. destruct (Z.eqb_spec e.1 u) as [E | Hne].
  - cbn [ecma_op_internal_buffer_delete fst]. change (ecma_is_value_empty EMPTY) with true. rewrite E, u_is_set, (value_object x (x_range w x ob Hweak Hx)).
    destruct (ecma_is_value_object e.2); [| reflexivity]. cbn [List.filter keep]. now rewrite Z.eqb_refl.
  - destruct (ecma_is_value_empty e.1) eqn:Ee; [reflexivity |]. destruct (ecma_is_value_object e.2); [| reflexivity]. destruct (Hk e.1) as (k & Ek & Rk); [now left | now apply Z.eqb_neq in Ee |].
    rewrite Ek, (value_object k Rk). cbn [List.filter keep]. rewrite (proj2 (Z.eqb_neq _ _)); [reflexivity |]. congruence.
Qed.

Lemma class_clean y oby c vs more : y <> x -> objects w !! y = Some oby -> class_of oby = Some c -> mark_class w y oby c = Some (vs, more) -> mark_class w' y (clean u oby) (clean_class u c) = Some (kept x vs, more).
Proof.
  intros Hne Hy Hc. assert (Eproperties : properties (clean u oby) = clean_properties u (properties oby)) by (unfold clean; now rewrite (proj1 (clean_holder_spec u (clean_refs u oby)))).
  assert (Hplain : forall m : option (list visit), (forall vs, m = Some vs -> plain vs) -> (let? v := m in Some (v, true)) = Some (vs, more) -> (let? v := m in Some (v, true)) = Some (kept x vs, more)).
  { intros m Hm. destruct m as [v |]; [| discriminate]. intros [= <- <-]. rewrite plain_kept; [reflexivity | now apply Hm]. }
  assert (Hcode : forall cp, mark_code w' cp = mark_code w cp) by (intros cp; unfold mark_code, ecma_gc_mark_compiled_code; now rewrite Hcodes, Hscripts).
  assert (Hexec : forall e, ecma_gc_mark_executable_object w' e = ecma_gc_mark_executable_object w e) by (intros e; unfold ecma_gc_mark_executable_object; now rewrite Hcodes).
  destruct c; cbn [clean_class]; unfold mark_class; rewrite ?Hcode, ?Hexec; try (intros [= <- <-]; rewrite plain_kept by auto 8 with plain; reflexivity).
  - intros [= <- <-]. rewrite plain_kept; [reflexivity |]. unfold ecma_gc_mark_arguments_object. destruct mapped as [[] |]; auto 8 with plain.
  - destruct (ecma_gc_mark_properties w y true (properties oby)) as [ps |] eqn:E; [| discriminate]. intros [= <- <-]. rewrite Eproperties, (properties_clean y oby true ps Hne Hy E). reflexivity.
  - apply Hplain. apply plain_executable.
  - apply Hplain. apply plain_executable.
  - assert (Ecode : (if negb (flag_set (module_flags m) 1) then match compiled_code_p m with Some code_cp => mark_code w' code_cp | None => Some [] end else Some [])
      = (if negb (flag_set (module_flags m) 1) then match compiled_code_p m with Some code_cp => mark_code w code_cp | None => Some [] end else Some [])) by (destruct (compiled_code_p m); now rewrite ?Hcode).
    rewrite Ecode. clear Ecode. match goal with |- context [visit_option (scope_p m) ++ _ ++ _] => idtac end.
    destruct (if negb (flag_set (module_flags m) 1) then match compiled_code_p m with Some code_cp => mark_code w code_cp | None => Some [] end else Some []) as [code |] eqn:E; cbv iota; [| intros [=]]. intros [= <- <-]. rewrite plain_kept; [reflexivity |].
    assert (Hp : plain code) by (destruct (negb _); [destruct (compiled_code_p m); [exact (plain_mark_code _ _ _ E) |] |]; now injection E as <-). auto 8 with plain.
  - apply Hplain. intros vs'. unfold ecma_gc_mark_promise_object. destruct reactions as [buffer |]; [destruct (mark_reactions buffer) as [vs2 |] eqn:E; [| discriminate]; apply plain_reactions with (fuel := length buffer) in E; [| exact (le_n _)] |]; intros [= <-]; auto with plain.
  - destruct id; try (intros [= <- <-]; rewrite plain_kept; [reflexivity |]; try (apply plain_flat_map; intros e); auto with plain).
    intros [= <- <-]. rewrite weakmap_visits_clean; [reflexivity |]. intros v Hv H. destruct (wo_keys _ Hweak y oby v Hy) as (k & kob & -> & Hk & _); [unfold holder_keys; rewrite Hc; cbn [class_keys]; now apply in_nonempty |]. exists k. split; [reflexivity | exact (range_of w Hweak k kob Hk)].
  - apply Hplain. intros vs'. apply plain_mark_code.
  - destruct (target =? u); intros [= <- <-]; reflexivity.
Qed.

(** ** Objects *)

Lemma marks_clean y vs : y <> x -> marks w y = Some vs -> marks w' y = Some (kept x vs).
Proof.
  intros Hne. unfold marks. rewrite Hobjects, decide_False by exact Hne. destruct (objects w !! y) as [oby |] eqn:Hy; [| discriminate]. cbn [fmap option_fmap option_map].
  destruct (clean_holder_spec u (clean_refs u oby)) as (Ep & Ec & _ & _ & Eu & _). fold (clean u oby) in Ep, Ec, Eu. cbn [clean_refs set_properties properties u2_cp] in Ep, Eu. rewrite (proj1 (clean_refs_holder u oby)) in Ec.
  assert (Htype : forall vs more, mark_type w y oby = Some (vs, more) -> mark_type w' y (clean u oby) = Some (kept x vs, more)).
  { clear vs. intros vs more. unfold mark_type. rewrite Eu, Ep.
    assert (Eb : class_of oby = None -> body (clean u oby) = body oby) by (unfold clean, clean_holder; rewrite (proj1 (clean_refs_holder u oby)); now intros ->).
    assert (Hcode : forall cp, ecma_gc_mark_compiled_code w' cp = ecma_gc_mark_compiled_code w cp) by (intros cp; unfold ecma_gc_mark_compiled_code; now rewrite Hscripts).
    assert (Hplain : forall m : option (list visit), (forall vs, m = Some vs -> plain vs) -> (let? v := m in Some (v, Some true)) = Some (vs, more) -> (let? v := m in Some (v, Some true)) = Some (kept x vs, more)).
    { intros m Hm. destruct m as [v |]; [| discriminate]. intros [= <- <-]. rewrite plain_kept; [reflexivity | now apply Hm]. }
    assert (Hclass : forall prefix c, plain prefix -> class_of oby = Some c -> (let? (v, m) := mark_class w y oby c in Some (prefix ++ v, if m : bool then Some true else None)) = Some (vs, more) ->
      (let? (v, m) := mark_class w' y (clean u oby) (clean_class u c) in Some (prefix ++ v, if m : bool then Some true else None)) = Some (kept x vs, more)).
    { intros prefix c Hprefix Hc E. destruct (mark_class w y oby c) as [[v m] |] eqn:E2; [| discriminate]. injection E as <- <-. rewrite (class_clean y oby c v m Hne Hy Hc E2). now rewrite List.filter_app, (plain_kept x prefix Hprefix). }
    assert (Hbody : forall c, class_of oby = Some c -> body (clean u oby) = body (with_class (clean_class u c) oby)) by (intros c Hc; unfold clean, clean_holder; rewrite (proj1 (clean_refs_holder u oby)), Hc; unfold with_class; cbn; now destruct (body oby)).
    assert (Harray : forall prefix a, plain prefix ->
      (if negb (Z.land (length_prop_and_hole_count a) ECMA_ARRAY_TEMPLATE_LITERAL =? 0) then Some (prefix, None)
       else if ecma_op_array_is_fast_array a then
         let? vs := match array_values a with Some values => if (Z.to_nat (array_length a) <=? length values)%nat then Some (visit_values (firstn (Z.to_nat (array_length a)) values)) else None | None => Some [] end in
         Some (prefix ++ vs ++ visit_if_set (u2_cp oby), None)
       else Some (prefix, Some true)) = Some (vs, more) -> plain vs).
    { intros prefix a Hp. destruct (negb _); [now intros [= <- <-] |]. destruct (ecma_op_array_is_fast_array a); [| now intros [= <- <-]]. destruct (array_values a) as [values |]; [destruct (_ <=? _)%nat; [| discriminate] |]; intros [= <- <-]; auto 8 with plain. }
    unfold with_class in Hbody. unfold class_of in Eb, Ec, Hclass, Hbody. destruct (body oby) eqn:Ebody; try rewrite (Eb eq_refl); rewrite ?Hcodes, ?Hcode; try (intros [= <- <-]; rewrite plain_kept by auto 8 with plain; reflexivity).
    - destruct (type =? ECMA_LEX_ENV_CLASS_TYPE_MODULE); [| intros [= <- <-]; rewrite plain_kept by auto 8 with plain; reflexivity].
      destruct (ecma_gc_mark_properties w y true (properties oby)) as [ps |] eqn:E; [| discriminate]. intros [= <- <-]. rewrite (properties_clean y oby true ps Hne Hy E). now rewrite !List.filter_app, (plain_kept x (visit_if_set (u2_cp oby))) by auto with plain.
    - intros [= <- <-]. rewrite plain_kept; [reflexivity |]. destruct g; auto 8 with plain.
    - rewrite (Hbody _ eq_refl). now apply Hclass.
    - rewrite (Hbody _ eq_refl). now apply Hclass.
    - intros E. rewrite plain_kept by exact (Harray [] a eq_refl E). exact E.
    - intros E. rewrite plain_kept by exact (Harray [VISIT (realm_value b)] a eq_refl E). exact E.
    - destruct (codes w !! bytecode_cp) as [code |]; [| discriminate]. rewrite Hcode. destruct (negb _); [intros [= <- <-]; rewrite plain_kept by auto 8 with plain; reflexivity |].
      destruct (ecma_gc_mark_compiled_code w _) as [v |] eqn:E; [| discriminate]. apply plain_code in E. intros [= <- <-]. rewrite plain_kept by auto 8 with plain. reflexivity.
    - intros [= <- <-]. rewrite plain_kept; [reflexivity |]. destruct h; auto with plain.
    - apply Hplain. intros vs'. apply plain_bound.
    - apply Hplain. intros vs'. apply plain_code. }
  destruct (mark_type w y oby) as [[v more] |] eqn:E; [| discriminate]. rewrite (Htype v more eq_refl). destruct more as [proto |]; [| now intros [= <-]].
  destruct (ecma_gc_mark_properties w y false (properties oby)) as [ps |] eqn:E2; [| discriminate]. intros [= <-]. rewrite Ep, Eu, (properties_clean y oby false ps Hne Hy E2). rewrite !List.filter_app. do 3 f_equal. symmetry. apply plain_kept. auto with plain.
Qed.
End Clean.
