(* ===== verification/GcHeapOk.v ===== *)
(** * The sweep and the whole collection

    Objects are released one after the other; what the release of each relies on holds for
    the others still.  A collection ends, keeps the objects that are reached and releases
    all others, and leaves a heap that the next collection can start from. *)
From Stdlib Require Import ZArith Lia Bool List Permutation.
From stdpp Require Import base gmap list.
From S2P Require Import Prelude JmemPointers Values PropNames GcHeap GcMark Gc GcFree GcMarking GcChains GcRun GcSweep GcRelease GcObject GcClean.
Import ListNotations.
#[local] Open Scope Z_scope.

(** ** What the release of the objects relies on *)

Record sound (w : gworld) : Prop := {
  sd_weak : weak_ok (objects w);
  sd_releasable : forall x ob, objects w !! x = Some ob -> releasable w ob = true
}.

Lemma clean_properties_of u ob : properties (clean u ob) = clean_properties u (properties ob).
Proof. unfold clean. now rewrite (proj1 (clean_holder_spec u (clean_refs u ob))). Qed.

Lemma clean_body u ob : body (clean u ob) = match body ob with CLASS c => CLASS (clean_class u c) | BUILT_IN_CLASS b c => BUILT_IN_CLASS b (clean_class u c) | b => b end.
Proof. unfold clean, clean_holder, with_class, class_of. cbn. destruct (body ob) eqn:E; cbn; now rewrite ?E. Qed.

Lemma no_weak_refs_clean u ob : no_weak_refs (clean u ob) = no_weak_refs ob.
Proof. unfold no_weak_refs. rewrite clean_properties_of, weak_buffers_clean. now destruct (weak_buffers (properties ob)). Qed.

Lemma releasable_clean w w' u ob : codes w' = codes w -> releasable w ob = true -> releasable w' (clean u ob) = true.
Proof.
  intros Hc. unfold releasable. rewrite clean_properties_of, clean_properties_ok, !andb_true_iff. intros [Hb Hp]. split; [| exact Hp]. unfold body_ok in *. rewrite clean_body.
  assert (Hclass : forall c, class_ok w c = true -> class_ok w' (clean_class u c) = true).
  { intros c. unfold class_ok. destruct c; cbn [clean_class]; try reflexivity; unfold ecma_gc_free_executable_object; rewrite ?Hc; try easy; [now destruct id | now destruct (target =? u)]. }
  destruct (body ob); unfold array_ok in *; rewrite ?no_weak_refs_clean, ?Hc; try easy; now apply Hclass.
Qed.

Lemma released_lookup w x w' y ob' : released w x w' -> objects w' !! y = Some ob' -> y <> x /\ exists ob, objects w !! y = Some ob /\ ob' = clean (value_of x) ob.
Proof.
  intros H Hy. rewrite (re_objects _ _ _ H) in Hy. destruct (decide (y = x)) as [-> | Hne]; [discriminate |]. split; [exact Hne |]. destruct (objects w !! y) as [ob |]; [| discriminate]. injection Hy as <-. now exists ob.
Qed.

Lemma released_other w x w' y ob : released w x w' -> y <> x -> objects w !! y = Some ob -> objects w' !! y = Some (clean (value_of x) ob).
Proof. intros H Hne Hy. now rewrite (re_objects _ _ _ H), decide_False, Hy. Qed.

Lemma released_weak w x w' : weak_ok (objects w) -> is_Some (objects w !! x) -> released w x w' -> weak_ok (objects w').
Proof.
  intros Hweak Hx Hr. pose proof (wo_range _ Hweak) as Hrange. assert (Rx := Hrange x Hx).
  assert (Hback : forall v, negb (v =? value_of x) = true <-> v <> value_of x) by (intros v; now rewrite negb_true_iff, Z.eqb_neq).
  assert (Hval : forall y ob, objects w !! y = Some ob -> y <> x <-> value_of y <> value_of x).
  { intros y ob Hy. split; [intros Hne E; apply Hne; apply value_inj; [apply Hrange; now exists ob | exact Rx | exact E] | congruence]. }
  constructor.
  - intros y [ob' Hy]. destruct (released_lookup _ _ _ _ _ Hr Hy) as (_ & ob & E & _). apply Hrange. now exists ob.
  - intros y ob' Hy. destruct (released_lookup _ _ _ _ _ Hr Hy) as (_ & ob & E & ->). rewrite clean_properties_of, weak_buffers_clean, length_map. exact (wo_one _ Hweak y ob E).
  - intros k kob' v Hk Hv. destruct (released_lookup _ _ _ _ _ Hr Hk) as (Hkx & kob & E & ->). rewrite weak_refs_clean, filter_In, Hback in Hv. destruct Hv as [Hv Hne]. destruct (wo_refs _ Hweak k kob v E Hv) as (h & hob & -> & Hh & Hin).
    exists h, (clean (value_of x) hob). split; [reflexivity |]. split; [apply (released_other w x); [exact Hr | now apply (Hval h hob) | exact Hh] |]. rewrite holder_keys_clean, filter_In, Hback. split; [exact Hin | now apply (Hval k kob)].
  - intros h hob' v Hh Hv. destruct (released_lookup _ _ _ _ _ Hr Hh) as (Hhx & hob & E & ->). rewrite holder_keys_clean, filter_In, Hback in Hv. destruct Hv as [Hv Hne]. destruct (wo_keys _ Hweak h hob v E Hv) as (k & kob & -> & Hk & Hin).
    exists k, (clean (value_of x) kob). split; [reflexivity |]. split; [apply (released_other w x); [exact Hr | now apply (Hval k kob) | exact Hk] |]. rewrite weak_refs_clean, filter_In, Hback. split; [exact Hin | now apply (Hval h hob)].
  - intros y ob' Hy. destruct (released_lookup _ _ _ _ _ Hr Hy) as (_ & ob & E & ->). rewrite weak_refs_clean, holder_keys_clean. split; apply List.NoDup_filter; apply (wo_nodup _ Hweak y ob E).
Qed.

Lemma released_sound w x w' : sound w -> is_Some (objects w !! x) -> released w x w' -> sound w'.
Proof.
  intros [Hweak Hrel] Hx Hr. constructor; [exact (released_weak w x w' Hweak Hx Hr) |]. intros y ob' Hy. destruct (released_lookup _ _ _ _ _ Hr Hy) as (_ & ob & E & ->).
  apply (releasable_clean w); [exact (ef_codes _ _ (re_effect _ _ _ Hr)) | exact (Hrel y ob E)].
Qed.

(** ** The sweep *)

(** An object after the objects in [W] are gone *)
Definition forget (W : list Z) (ob : gc_object) : gc_object := foldl (fun ob x => clean (value_of x) ob) ob W.

Definition keep_all (W : list Z) (v : visit) : bool := match v with VISIT _ => true | VISIT_IF_VISITED k _ => negb (bool_decide (k ∈ W)) end.

Lemma forget_spec W : forall ob, type_flags_refs (forget W ob) = type_flags_refs ob /\ gc_next_cp (forget W ob) = gc_next_cp ob /\ u2_cp (forget W ob) = u2_cp ob /\ hashmap (forget W ob) = hashmap ob.
Proof.
  unfold forget. induction W as [| x W IH]; intros ob; [now splits |]. cbn [foldl]. destruct (IH (clean (value_of x) ob)) as (-> & -> & -> & ->). unfold clean. destruct (clean_holder_spec (value_of x) (clean_refs (value_of x) ob)) as (_ & _ & -> & -> & -> & ->). now splits.
Qed.

Record swept (w : gworld) (W : list Z) (w' : gworld) : Prop := {
  sw_codes : codes w' = codes w;
  sw_scripts : scripts w' = scripts w;
  sw_chain : ecma_gc_objects_cp w' = ecma_gc_objects_cp w;
  sw_limit : gc_mark_limit w' = gc_mark_limit w;
  sw_new : ecma_gc_new_objects w' = ecma_gc_new_objects w;
  sw_number : is_u32 (ecma_gc_objects_number w) -> zlength W <= ecma_gc_objects_number w -> ecma_gc_objects_number w' = ecma_gc_objects_number w - zlength W;
  sw_objects : forall y, objects w' !! y = if decide (y ∈ W) then None else forget W <$> objects w !! y;
  sw_marks : forall y vs, y ∉ W -> marks w y = Some vs -> marks w' y = Some (List.filter (keep_all W) vs);
  sw_sound : sound w'
}.

Lemma swept_nil w : sound w -> swept w [] w.
Proof.
  intros Hs. constructor; try reflexivity; [intros; rewrite (@zlength_nil Z); lia | | | exact Hs].
  - intros y. rewrite decide_False by apply not_elem_of_nil. now destruct (objects w !! y).
  - intros y vs _ E. rewrite E. f_equal. clear E. induction vs as [| v vs IH]; [reflexivity |]. cbn [List.filter]. assert (Hv : keep_all [] v = true) by (destruct v; cbn; [reflexivity |]; now rewrite bool_decide_eq_false_2 by apply not_elem_of_nil). now rewrite Hv, <- IH.
Qed.

Lemma kept_all x W vs : List.filter (keep_all W) (List.filter (keep x) vs) = List.filter (keep_all (x :: W)) vs.
Proof.
  induction vs as [| v vs IH]; [reflexivity |]. cbn [List.filter]. destruct v as [o | k o]; cbn [keep keep_all]; [cbn [List.filter keep_all]; now rewrite IH |].
  destruct (Z.eqb_spec k x) as [-> | Hne]; cbn [negb]; [rewrite bool_decide_eq_true_2 by (now left); exact IH |]. cbn [List.filter keep_all].
  replace (bool_decide (k ∈ x :: W)) with (bool_decide (k ∈ W)) by (apply bool_decide_ext; rewrite elem_of_cons; tauto). now rewrite IH.
Qed.

Lemma swept_cons w x W w1 w' : sound w -> is_Some (objects w !! x) -> released w x w1 -> swept w1 W w' -> x ∉ W -> swept w (x :: W) w'.
Proof.
  intros Hs Hx [[E1 E2 E3 E4 E5 E6 _] Ho] [S1 S2 S3 S4 S5 S6 S7 S8 S9] Hn. destruct Hx as [ob Hx]. cbn in E1, E2, E3, E4, E5, E6.
  constructor; try congruence.
  - intros Hu Hlen. rewrite zlength_cons in *. pose proof (zlength_nonneg W). assert (Hw1 : ecma_gc_objects_number w1 = ecma_gc_objects_number w - 1) by (rewrite E5; apply u32_small; unfold is_u32 in *; lia).
    rewrite S6; rewrite ?Hw1; unfold is_u32 in *; lia.
  - intros y. rewrite S7, Ho. destruct (decide (y = x)) as [-> | Hne]; [rewrite (decide_True (P := x ∈ x :: W)) by (now left); now destruct (decide (x ∈ W)) |].
    destruct (decide (y ∈ W)) as [H | H]; [now rewrite decide_True by (now right) |]. rewrite (decide_False (P := y ∈ x :: W)) by (rewrite elem_of_cons; tauto). now destruct (objects w !! y).
  - intros y vs Hy E. rewrite not_elem_of_cons in Hy. rewrite <- kept_all. apply S8; [tauto |]. apply (marks_clean w w1 x ob); [exact (sd_weak _ Hs) | exact Hx | exact E1 | exact E2 | exact Ho | tauto | exact E].
Qed.

Lemma sweep_run W : forall fuel p w, (length W <= fuel)%nat -> sound w -> links w p W JMEM_CP_NULL -> NoDup W -> exists w', sweep fuel p w = Some w' /\ swept w W w'.
Proof.
  induction W as [| x W IH]; intros fuel p w Hfuel Hs Hl Hnd.
  - cbn in Hl. subst p. exists w. split; [destruct fuel; reflexivity | now apply swept_nil].
  - destruct Hl as (-> & Hx0 & n & Hn & Hl). destruct fuel as [| fuel]; [cbn in Hfuel; lia |]. cbn [sweep]. rewrite (proj2 (Z.eqb_neq _ _) Hx0). unfold next_of in Hn. destruct (objects w !! x) as [ob |] eqn:Hx; [| discriminate]. injection Hn as Hn. rewrite Hn.
    destruct (free_object_run w x ob (sd_weak _ Hs) Hx (sd_releasable _ Hs x ob Hx)) as (w1 & -> & Hr). assert (Hsome : is_Some (objects w !! x)) by now exists ob.
    pose proof (released_sound w x w1 Hs Hsome Hr) as Hs1. apply NoDup_cons in Hnd as [Hnx Hnd].
    destruct (IH fuel n w1) as (w' & E & Hw'); [cbn in Hfuel; lia | exact Hs1 | | exact Hnd |].
    + apply (links_ext w); [| exact Hl]. intros y Hy. unfold next_of. rewrite (re_objects _ _ _ Hr), decide_False by (intros ->; apply Hnx; now apply list_elem_of_In). destruct (objects w !! y) as [oby |]; [| reflexivity].
      cbn. f_equal. unfold clean. now destruct (clean_holder_spec (value_of x) (clean_refs (value_of x) oby)) as (_ & _ & -> & _).
    + exists w'. split; [exact E |]. exact (swept_cons w x W w1 w' Hs Hsome Hr Hw' Hnx).
Qed.

(** ** A collection from a well-formed heap to a well-formed heap *)

(** The heap between two collections: [l] are its objects in the order of the chain *)
Record gc_ok (w : gworld) (l : list Z) : Prop := {
  gk_heap : heap_ok w l;
  gk_sound : sound w;
  gk_number : ecma_gc_objects_number w = zlength l;
  gk_count : is_u32 (zlength l)
}.

Lemma frozen_refs w w' x ob ob' : frozen w w' -> objects w !! x = Some ob -> objects w' !! x = Some ob' -> body ob' = body ob /\ properties ob' = properties ob /\ weak_refs ob' = weak_refs ob /\ holder_keys ob' = holder_keys ob.
Proof.
  intros Hf Hx Hx'. destruct (frozen_lookup _ _ Hf x) as [[E _] | (a & b & Ea & Eb & _ & E1 & _ & E2)]; [congruence |]. rewrite Hx in Ea. rewrite Hx' in Eb. injection Ea as <-. injection Eb as <-.
  unfold weak_refs, holder_keys, class_of. now rewrite E1, E2.
Qed.

Lemma frozen_back w w' x ob' : frozen w w' -> objects w' !! x = Some ob' -> exists ob, objects w !! x = Some ob.
Proof. intros Hf Hx. destruct (frozen_lookup _ _ Hf x) as [[_ E] | (a & b & Ea & _)]; [congruence | now exists a]. Qed.

Lemma frozen_on w w' x ob : frozen w w' -> objects w !! x = Some ob -> exists ob', objects w' !! x = Some ob'.
Proof. intros Hf Hx. destruct (frozen_lookup _ _ Hf x) as [[E _] | (a & b & _ & Eb & _)]; [congruence | now exists b]. Qed.

Lemma frozen_sound w w' : frozen w w' -> sound w -> sound w'.
Proof.
  intros Hf [[Hr Ho Hw Hk Hn] Hrel]. constructor; [constructor |].
  - intros x [ob' Hx]. destruct (frozen_back _ _ _ _ Hf Hx) as [ob E]. apply Hr. now exists ob.
  - intros x ob' Hx. destruct (frozen_back _ _ _ _ Hf Hx) as [ob E]. destruct (frozen_refs _ _ _ _ _ Hf E Hx) as (_ & -> & _). exact (Ho x ob E).
  - intros k kob' v Hkk Hv. destruct (frozen_back _ _ _ _ Hf Hkk) as [kob E]. destruct (frozen_refs _ _ _ _ _ Hf E Hkk) as (_ & _ & Er & _). rewrite Er in Hv. destruct (Hw k kob v E Hv) as (h & hob & -> & Hh & Hin).
    destruct (frozen_on _ _ _ _ Hf Hh) as [hob' Hh']. exists h, hob'. split; [reflexivity |]. split; [exact Hh' |]. destruct (frozen_refs _ _ _ _ _ Hf Hh Hh') as (_ & _ & _ & ->). exact Hin.
  - intros h hob' v Hh Hv. destruct (frozen_back _ _ _ _ Hf Hh) as [hob E]. destruct (frozen_refs _ _ _ _ _ Hf E Hh) as (_ & _ & _ & Er). rewrite Er in Hv. destruct (Hk h hob v E Hv) as (k & kob & -> & Hkk & Hin).
    destruct (frozen_on _ _ _ _ Hf Hkk) as [kob' Hk']. exists k, kob'. split; [reflexivity |]. split; [exact Hk' |]. destruct (frozen_refs _ _ _ _ _ Hf Hkk Hk') as (_ & _ & -> & _). exact Hin.
  - intros x ob' Hx. destruct (frozen_back _ _ _ _ Hf Hx) as [ob E]. destruct (frozen_refs _ _ _ _ _ Hf E Hx) as (_ & _ & -> & ->). exact (Hn x ob E).
  - intros x ob' Hx. destruct (frozen_back _ _ _ _ Hf Hx) as [ob E]. destruct (frozen_refs _ _ _ _ _ Hf E Hx) as (Eb & Ep & _). pose proof (Hrel x ob E) as H. unfold releasable, body_ok, class_ok, ecma_gc_free_executable_object, array_ok, no_weak_refs in *. now rewrite Eb, Ep, (frozen_codes _ _ Hf).
Qed.

(** Changing the chain's head and the counters *)
Lemma set_chain_heap w l cp n m : heap_ok w l -> cp = ecma_gc_objects_cp w -> heap_ok (set_chain cp n m w) l.
Proof.
  intros H ->. assert (Hf : frozen w w) by reflexivity. assert (Hmarks : forall x, marks (set_chain (ecma_gc_objects_cp w) n m w) x = marks w x) by reflexivity.
  destruct H as [H1 H2 H3 H4 H5 H6]. constructor; try assumption. now apply (links_ext w).
Qed.

Lemma set_chain_sound w cp n m : sound w -> sound (set_chain cp n m w).
Proof. intros [H1 H2]. now constructor. Qed.

Lemma clean_set_next u n ob : clean u (set_next n ob) = set_next n (clean u ob).
Proof. unfold clean, clean_holder, class_of, with_class. cbn. now destruct (body ob). Qed.

Lemma forget_set_next W n : forall ob, forget W (set_next n ob) = set_next n (forget W ob).
Proof. unfold forget. induction W as [| x W IH]; intros ob; [reflexivity |]. cbn [foldl]. now rewrite clean_set_next, IH. Qed.

Lemma set_next_same w w' x ob : frozen w w' -> objects w !! x = Some ob -> flags_of w' x = flags_of w x -> exists n, objects w' !! x = Some (set_next n ob).
Proof.
  intros Hf Hx Hfl. destruct (frozen_lookup _ _ Hf x) as [[E _] | (a & b & Ea & Eb & E1 & E2 & E3 & E4)]; [congruence |]. rewrite Hx in Ea. injection Ea as <-. unfold flags_of in Hfl. rewrite Hx, Eb in Hfl. cbn in Hfl. injection Hfl as Hfl.
  exists (gc_next_cp b). rewrite Eb. f_equal. destruct b. cbn in *. unfold set_next. cbn. congruence.
Qed.

(** ** The collection *)

(** What a collection that releases the objects [W] and keeps [B] leaves *)
Record collected (w : gworld) (W B : list Z) (w' : gworld) : Prop := {
  cd_reached : forall x, In x B <-> reached w x;
  cd_released : forall x, ~ In x B -> objects w' !! x = None;
  cd_kept : forall x ob, In x B -> objects w !! x = Some ob -> exists n, objects w' !! x = Some (set_next n (forget W ob));
  cd_marks : forall x vs, In x B -> marks w x = Some vs -> marks w' x = Some (List.filter (keep_all W) vs);
  cd_chain : links w' (ecma_gc_objects_cp w') B JMEM_CP_NULL;
  cd_number : ecma_gc_objects_number w' = zlength B;
  cd_new : ecma_gc_new_objects w' = 0;
  cd_limit : gc_mark_limit w' = gc_mark_limit w;
  cd_sound : sound w'
}.

Lemma reached_some w l x : heap_ok w l -> reached w x -> is_Some (objects w !! x).
Proof.
  intros Hh Hr. destruct Hr as [x (f & Hf & _) | x y _ (vs & Hvs & Hin) | m k y _ _ (vs & Hvs & Hin)].
  - unfold flags_of in Hf. destruct (objects w !! x); [easy | discriminate].
  - destruct (objects w !! x) as [ob |] eqn:E; [| unfold marks in Hvs; now rewrite E in Hvs]. destruct (hk_total _ _ Hh x (ltac:(now rewrite E))) as (vs' & Hvs' & H). rewrite Hvs in Hvs'. injection Hvs' as <-. exact (H _ y Hin eq_refl).
  - destruct (objects w !! m) as [ob |] eqn:E; [| unfold marks in Hvs; now rewrite E in Hvs]. destruct (hk_total _ _ Hh m (ltac:(now rewrite E))) as (vs' & Hvs' & H). rewrite Hvs in Hvs'. injection Hvs' as <-. apply (H _ y Hin). now right.
Qed.

Lemma collect_run w l : gc_ok w l -> gc_mark_limit w <> 0 -> exists w' W B, ecma_gc_run w = Some w' /\ Permutation l (W ++ B) /\ collected w W B w'.
Proof.
  intros [Hheap Hsound Hnumber Hcount] Hlimit. unfold ecma_gc_run, mark_phase. set (w0 := set_chain _ _ 0 w). assert (Hheap0 : heap_ok w0 l) by now apply set_chain_heap.
  assert (Hreach : forall x, reached w0 x <-> reached w x) by (intros x; split; intros H; [induction H as [x H | x y _ IH H | m k y _ IHm _ IHk H] | induction H as [x H | x y _ IH H | m k y _ IHm _ IHk H]]; solve [now apply reached_root | now apply (reached_visit _ x) | now apply (reached_weak _ m k)]).
  destruct (mark_loops_run w0 l Hheap0 Hlimit) as (s & W & B & -> & [Mb Mw Mp Mf Mr Mn]).
  assert (Hnd : NoDup (W ++ B)) by (rewrite <- Mp; exact (hk_nodup _ _ Hheap)). apply NoDup_app in Hnd as (HndW & Hd & HndB).
  set (w2 := set_chain (black_list_head s) _ _ (world s)). assert (Hs2 : sound w2) by (apply set_chain_sound, (frozen_sound w0); [exact Mf | now apply set_chain_sound]).
  assert (Hw2 : links w2 (white_gray_list_head s) W JMEM_CP_NULL) by (apply (links_ext (world s)); [reflexivity | exact Mw]).
  destruct (sweep_run W (chain_fuel w2) (white_gray_list_head s) w2) as (w3 & -> & Hsw); [unfold chain_fuel; apply le_S; exact (chain_length w2 W _ _ Hw2 HndW) | exact Hs2 | exact Hw2 | exact HndW |].
  exists (emit [RE_CACHE_GC] w3), W, B. split; [reflexivity |]. split; [exact Mp |].
  assert (HW : forall x, In x B -> x ∉ W) by (intros x Hx H; apply (Hd x H); now apply list_elem_of_In).
  assert (Hlen : zlength l = zlength W + zlength B) by (rewrite <- zlength_app; unfold zlength; now rewrite (Permutation_length Mp)).
  constructor.
  - intros x. split; [intros H; apply Hreach, (Mr x H) |]. intros H. destruct (reached_some _ _ _ Hheap H) as [ob Hx]. assert (Hl : In x l) by (apply (hk_all _ _ Hheap); now exists ob). apply (Permutation_in x Mp) in Hl. rewrite in_app_iff in Hl.
    destruct Hl as [Hl | Hl]; [exfalso; apply (Mn x Hl); now apply Hreach | exact Hl].
  - intros x Hx. change (objects w3 !! x = None). rewrite (sw_objects _ _ _ Hsw). destruct (decide (x ∈ W)) as [H | H]; [reflexivity |]. change (objects w2) with (objects (world s)).
    destruct (objects (world s) !! x) as [ob' |] eqn:E; [exfalso | reflexivity]. destruct (frozen_back _ _ _ _ Mf E) as [ob Eo]. assert (Hl : In x l) by (apply (hk_all _ _ Hheap); now exists ob).
    apply (Permutation_in x Mp) in Hl. rewrite in_app_iff, <- list_elem_of_In in Hl. tauto.
  - intros x ob Hx Hob. change (exists n, objects w3 !! x = Some (set_next n (forget W ob))). rewrite (sw_objects _ _ _ Hsw), decide_False by now apply HW. destruct (set_next_same w0 (world s) x ob Mf Hob (proj2 (Mr x Hx))) as [n E].
    exists n. change (objects w2) with (objects (world s)). rewrite E. cbn. now rewrite forget_set_next.
  - intros x vs Hx E. change (marks w3 x = Some (List.filter (keep_all W) vs)). apply (sw_marks _ _ _ Hsw); [now apply HW |]. change (marks (world s) x = Some vs). rewrite (marks_frozen w0 (world s) Mf). exact E.
  - apply (links_ext (world s)); [| change (links (world s) (ecma_gc_objects_cp w3) B JMEM_CP_NULL); rewrite (sw_chain _ _ _ Hsw); exact Mb]. intros x Hx. unfold next_of. change (objects (emit [RE_CACHE_GC] w3)) with (objects w3).
    rewrite (sw_objects _ _ _ Hsw), decide_False by now apply HW. change (objects w2) with (objects (world s)). destruct (objects (world s) !! x) as [ob |]; [| reflexivity]. cbn. f_equal. now destruct (forget_spec W ob) as (_ & -> & _).
  - pose proof (zlength_nonneg B). change (ecma_gc_objects_number w3 = zlength B). assert (En : ecma_gc_objects_number w2 = zlength l) by (change (ecma_gc_objects_number (world s) = zlength l); now rewrite (frozen_number _ _ Mf)).
    rewrite (sw_number _ _ _ Hsw); rewrite En; [lia | exact Hcount | lia].
  - change (ecma_gc_new_objects w3 = 0). rewrite (sw_new _ _ _ Hsw). change (ecma_gc_new_objects (world s) = 0). now rewrite (frozen_new _ _ Mf).
  - change (gc_mark_limit w3 = gc_mark_limit w). rewrite (sw_limit _ _ _ Hsw). change (gc_mark_limit (world s) = gc_mark_limit w). now rewrite (frozen_limit _ _ Mf).
  - destruct (sw_sound _ _ _ Hsw) as [H1 H2]. now constructor.
Qed.

(** ** The heap afterwards *)

Section After.
Variables (w w' : gworld) (l W B : list Z).
Hypothesis Hok : gc_ok w l.
Hypothesis Hperm : Permutation l (W ++ B).
Hypothesis Hc : collected w W B w'.

Lemma after_apart x : In x B -> x ∉ W.
Proof.
  intros Hx H. pose proof (hk_nodup _ _ (gk_heap _ _ Hok)) as Hnd. rewrite Hperm in Hnd. apply NoDup_app in Hnd as (_ & Hd & _). apply (Hd x H). now apply list_elem_of_In.
Qed.

Lemma before_some x : In x B -> exists ob, objects w !! x = Some ob.
Proof. intros Hx. destruct (reached_some _ _ _ (gk_heap _ _ Hok) (proj1 (cd_reached _ _ _ _ Hc x) Hx)) as [ob E]. now exists ob. Qed.

Lemma after_some x : In x B -> is_Some (objects w' !! x).
Proof. intros Hx. destruct (before_some x Hx) as [ob E]. destruct (cd_kept _ _ _ _ Hc x ob Hx E) as [n ->]. now eexists. Qed.

Lemma after_in x : is_Some (objects w' !! x) -> In x B.
Proof. intros Hx. destruct (in_dec Z.eq_dec x B) as [H | H]; [exact H |]. rewrite (cd_released _ _ _ _ Hc x H) in Hx. now destruct Hx. Qed.

Lemma after_flags x : In x B -> flags_of w' x = flags_of w x.
Proof.
  intros Hx. destruct (before_some x Hx) as [ob E]. destruct (cd_kept _ _ _ _ Hc x ob Hx E) as [n E']. unfold flags_of. rewrite E, E'. cbn. now destruct (forget_spec W ob) as (-> & _).
Qed.

Lemma knows_after x v : In x B -> knows w x v -> keep_all W v = true -> knows w' x v.
Proof. intros Hx (vs & Hvs & Hin) Hk. exists (List.filter (keep_all W) vs). split; [exact (cd_marks _ _ _ _ Hc x vs Hx Hvs) | rewrite filter_In; now split]. Qed.

Lemma knows_before x v : In x B -> knows w' x v -> knows w x v /\ keep_all W v = true.
Proof.
  intros Hx (vs' & Hvs & Hin). destruct (before_some x Hx) as [ob E]. destruct (hk_total _ _ (gk_heap _ _ Hok) x (ltac:(now rewrite E))) as (vs & Hvs0 & _). rewrite (cd_marks _ _ _ _ Hc x vs Hx Hvs0) in Hvs. injection Hvs as <-.
  rewrite filter_In in Hin. split; [exists vs; now split | tauto].
Qed.

Lemma keep_kept k y : In k B -> keep_all W (VISIT_IF_VISITED k y) = true.
Proof. intros Hk. cbn. now rewrite bool_decide_eq_false_2 by now apply after_apart. Qed.

Lemma root_after x : reached w x -> is_root w x -> is_root w' x.
Proof. intros Hr (f & Hf & H). exists f. split; [| exact H]. rewrite (after_flags x); [exact Hf | now apply (cd_reached _ _ _ _ Hc)]. Qed.

Lemma reached_after x : reached w x -> reached w' x.
Proof.
  intros H. induction H as [x H | x y Hx IH Hk | m k y Hm IHm Hk IHk Hw].
  - apply reached_root, root_after; [now apply reached_root | exact H].
  - apply (reached_visit _ x y IH), knows_after; [now apply (cd_reached _ _ _ _ Hc) | exact Hk | reflexivity].
  - apply (reached_weak _ m k y IHm IHk), knows_after; [now apply (cd_reached _ _ _ _ Hc) | exact Hw | now apply keep_kept, (cd_reached _ _ _ _ Hc)].
Qed.

Lemma heap_after : gc_ok w' B.
Proof.
  destruct Hok as [Hheap Hsound Hnumber Hcount]. assert (Hlen : zlength l = zlength W + zlength B) by (rewrite <- zlength_app; unfold zlength; now rewrite (Permutation_length Hperm)).
  pose proof (zlength_nonneg W). pose proof (zlength_nonneg B). constructor; [constructor | exact (cd_sound _ _ _ _ Hc) | exact (cd_number _ _ _ _ Hc) | unfold is_u32 in *; lia].
  - exact (cd_chain _ _ _ _ Hc).
  - pose proof (hk_nodup _ _ Hheap) as Hnd. rewrite Hperm in Hnd. apply NoDup_app in Hnd. tauto.
  - exact after_in.
  - intros x f Hf. assert (Hx : In x B) by (apply after_in; unfold flags_of in Hf; destruct (objects w' !! x); [easy | discriminate]). rewrite (after_flags x Hx) in Hf. exact (hk_words _ _ Hheap x f Hf).
  - intros x Hx. apply after_in in Hx. destruct (before_some x Hx) as [ob E]. destruct (hk_total _ _ Hheap x (ltac:(now rewrite E))) as (vs & Hvs & _). exists (List.filter (keep_all W) vs). split; [exact (cd_marks _ _ _ _ Hc x vs Hx Hvs) |].
    assert (Hr := proj1 (cd_reached _ _ _ _ Hc x) Hx). intros v y Hv Hm. rewrite filter_In in Hv. destruct Hv as [Hv Hk]. apply after_some, (cd_reached _ _ _ _ Hc). destruct v as [o | k o]; cbn [mentions] in Hm.
    + subst. apply (reached_visit _ x y Hr). now exists vs.
    + cbn [keep_all] in Hk. apply negb_true_iff, bool_decide_eq_false in Hk. assert (Hkr : reached w k).
      { destruct (hk_total _ _ Hheap x (ltac:(now rewrite E))) as (vs' & Hvs' & Ht). rewrite Hvs in Hvs'. injection Hvs' as <-. assert (Hkl : In k l) by (apply (hk_all _ _ Hheap), (Ht _ k Hv); now left).
        apply (Permutation_in k Hperm) in Hkl. rewrite in_app_iff in Hkl. destruct Hkl as [Hkl | Hkl]; [exfalso; apply Hk; now apply list_elem_of_In | now apply (cd_reached _ _ _ _ Hc)]. }
      destruct Hm as [<- | <-]; [exact Hkr |]. apply (reached_weak _ x k o Hr Hkr). now exists vs.
  - intros m k y Hk. assert (Hm : In m B) by (apply after_in; destruct Hk as (vs & Hvs & _); unfold marks in Hvs; destruct (objects w' !! m); [easy | discriminate]).
    destruct (knows_before m _ Hm Hk) as [Hkw Hkeep]. cbn [keep_all] in Hkeep. apply negb_true_iff, bool_decide_eq_false in Hkeep.
    destruct (before_some m Hm) as [ob E]. destruct (hk_total _ _ Hheap m (ltac:(now rewrite E))) as (vs & Hvs & Ht). assert (Hkl : In k l).
    { apply (hk_all _ _ Hheap). destruct Hkw as (vs' & Hvs' & Hin). rewrite Hvs in Hvs'. injection Hvs' as <-. apply (Ht _ k Hin). now left. }
    apply (Permutation_in k Hperm) in Hkl. rewrite in_app_iff in Hkl. destruct Hkl as [Hkl | Hkl]; [exfalso; apply Hkeep; now apply list_elem_of_In |].
    destruct (hk_weak _ _ Hheap m k y Hkw) as [Hroot | Hw]; [left; apply root_after; [now apply (cd_reached _ _ _ _ Hc) | exact Hroot] | right]. apply knows_after; [exact Hkl | exact Hw | now apply keep_kept].
Qed.
End After.

(** ** Nothing is left for a second collection *)

Lemma collect_twice w l : gc_ok w l -> gc_mark_limit w <> 0 -> exists w1 w2, ecma_gc_run w = Some w1 /\ ecma_gc_run w1 = Some w2 /\ ecma_gc_objects_number w2 = ecma_gc_objects_number w1
  /\ forall x, exists n, objects w2 !! x = set_next n <$> objects w1 !! x.
Proof.
  intros Hok Hlimit. destruct (collect_run w l Hok Hlimit) as (w1 & W & B & E1 & Hp & Hc). pose proof (heap_after w w1 l W B Hok Hp Hc) as Hok1.
  assert (Hlimit1 : gc_mark_limit w1 <> 0) by now rewrite (cd_limit _ _ _ _ Hc). destruct (collect_run w1 B Hok1 Hlimit1) as (w2 & W2 & B2 & E2 & Hp2 & Hc2).
  assert (HW2 : W2 = []).
  { pose proof (hk_nodup _ _ (gk_heap _ _ Hok1)) as Hnd. destruct W2 as [| x W2]; [reflexivity | exfalso]. assert (Hx : In x B) by (apply (Permutation_in x (Permutation_sym Hp2)); now left).
    apply (cd_reached _ _ _ _ Hc), (reached_after w w1 l W B Hok Hp Hc), (cd_reached _ _ _ _ Hc2) in Hx. rewrite Hp2 in Hnd. cbn [app] in Hnd. apply NoDup_cons in Hnd as [Hn _]. apply Hn. rewrite elem_of_app. right. now apply list_elem_of_In. }
  subst W2. cbn [app] in Hp2. exists w1, w2. split; [exact E1 |]. split; [exact E2 |]. split; [rewrite (cd_number _ _ _ _ Hc), (cd_number _ _ _ _ Hc2); unfold zlength; now rewrite (Permutation_length Hp2) |].
  intros x. destruct (in_dec Z.eq_dec x B2) as [Hx | Hx].
  - destruct (before_some w1 w2 B [] B2 Hok1 Hc2 x Hx) as [ob E]. destruct (cd_kept _ _ _ _ Hc2 x ob Hx E) as [n En]. exists n. now rewrite E, En.
  - exists 0. rewrite (cd_released _ _ _ _ Hc2 x Hx). destruct (objects w1 !! x) as [ob |] eqn:E; [| reflexivity]. exfalso. apply Hx, (Permutation_in x Hp2), (hk_all _ _ (gk_heap _ _ Hok1)). now exists ob.
Qed.

(** ** Checking a heap

    The well-formedness of a heap as a function, for concrete heaps. *)

Definition on_objects (P : Z -> gc_object -> bool) (w : gworld) : bool := forallb (fun p => P p.1 p.2) (map_to_list (objects w)).

Lemma on_objects_all P w : on_objects P w = true -> forall x ob, objects w !! x = Some ob -> P x ob = true.
Proof.
  unfold on_objects. rewrite forallb_forall. intros H x ob Hx. apply (H (x, ob)). apply list_elem_of_In. now apply elem_of_map_to_list.
Qed.

Fixpoint links_check (w : gworld) (p : Z) (l : list Z) : bool :=
  match l with
  | [] => p =? JMEM_CP_NULL
  | x :: l => (p =? x) && negb (x =? JMEM_CP_NULL) && match next_of w x with Some n => links_check w n l | None => false end
  end.

Lemma links_check_ok w l : forall p, links_check w p l = true -> links w p l JMEM_CP_NULL.
Proof.
  induction l as [| x l IH]; intros p H; cbn [links_check links] in *; [now apply Z.eqb_eq |]. apply andb_true_iff in H as [H Hn]. apply andb_true_iff in H as [Hp Hx]. apply Z.eqb_eq in Hp. apply negb_true_iff, Z.eqb_neq in Hx.
  split; [exact Hp |]. split; [exact Hx |]. destruct (next_of w x) as [n |]; [| discriminate]. exists n. split; [reflexivity | now apply IH].
Qed.

Definition present (w : gworld) (x : Z) : bool := is_some (objects w !! x).
Definition present_visit (w : gworld) (v : visit) : bool := match v with VISIT o => present w o | VISIT_IF_VISITED k o => present w k && present w o end.
Definition is_if_visited (m y : Z) (v : visit) : bool := match v with VISIT_IF_VISITED k o => (k =? m) && (o =? y) | _ => false end.
Definition root_check (w : gworld) (x : Z) : bool := match flags_of w x with Some f => 32 <=? f | None => false end.
Definition weak_visit_check (w : gworld) (m : Z) (v : visit) : bool :=
  match v with VISIT_IF_VISITED k y => root_check w k || match marks w k with Some vs => existsb (is_if_visited m y) vs | None => false end | _ => true end.
Definition marks_check (w : gworld) (x : Z) : bool := match marks w x with Some vs => forallb (present_visit w) vs && forallb (weak_visit_check w x) vs | None => false end.
Definition mutual (w : gworld) (back : gc_object -> list Z) (x v : Z) : bool :=
  let y := ecma_object_of_value v in (v =? value_of y) && match objects w !! y with Some yob => existsb (Z.eqb (value_of x)) (back yob) | None => false end.

Definition object_check (w : gworld) (l : list Z) (x : Z) (ob : gc_object) : bool :=
  existsb (Z.eqb x) l && (0 <=? type_flags_refs ob) && (type_flags_refs ob <? ECMA_OBJECT_NON_VISITED) && marks_check w x && (0 <? x) && (x <? 536870912)
  && (length (weak_buffers (properties ob)) <=? 1)%nat && forallb (mutual w holder_keys x) (weak_refs ob) && forallb (mutual w weak_refs x) (holder_keys ob)
  && bool_decide (NoDup (weak_refs ob)) && bool_decide (NoDup (holder_keys ob)) && releasable w ob.

Definition gc_check (w : gworld) (l : list Z) : bool :=
  links_check w (ecma_gc_objects_cp w) l && bool_decide (NoDup l) && on_objects (object_check w l) w && (ecma_gc_objects_number w =? zlength l) && (zlength l <? B32).

Lemma mutual_ok w back x v : mutual w back x v = true -> exists y yob, v = value_of y /\ objects w !! y = Some yob /\ In (value_of x) (back yob).
Proof.
  unfold mutual. rewrite andb_true_iff, Z.eqb_eq. intros [Hv H]. destruct (objects w !! ecma_object_of_value v) as [yob |] eqn:E; [| discriminate]. exists (ecma_object_of_value v), yob. split; [exact Hv |]. split; [exact E |].
  apply existsb_exists in H as (z & Hz & Ez). apply Z.eqb_eq in Ez. now subst.
Qed.

Lemma present_ok w x : present w x = true -> is_Some (objects w !! x).
Proof. unfold present. destruct (objects w !! x); [now intros _; eexists | discriminate]. Qed.

Lemma root_check_ok w x : root_check w x = true -> is_root w x.
Proof. unfold root_check. destruct (flags_of w x) as [f |] eqn:E; [| discriminate]. intros H. exists f. split; [exact E | now apply Z.leb_le]. Qed.

Lemma marks_check_ok w x : marks_check w x = true -> exists vs, marks w x = Some vs /\ (forall v y, In v vs -> mentions y v -> is_Some (objects w !! y))
  /\ forall k y, In (VISIT_IF_VISITED k y) vs -> is_root w k \/ knows w k (VISIT_IF_VISITED x y).
Proof.
  unfold marks_check. destruct (marks w x) as [vs |]; [| discriminate]. rewrite andb_true_iff, !forallb_forall. intros [Hp Hw]. exists vs. split; [reflexivity |]. split.
  - intros v y Hv Hm. specialize (Hp v Hv). destruct v as [o | k o]; cbn in *; [subst; now apply present_ok |]. apply andb_true_iff in Hp as [H1 H2]. destruct Hm as [<- | <-]; now apply present_ok.
  - intros k y Hv. specialize (Hw _ Hv). cbn in Hw. apply orb_true_iff in Hw as [Hw | Hw]; [left; now apply root_check_ok | right]. destruct (marks w k) as [vs' |] eqn:E; [| discriminate]. exists vs'. split; [exact E |].
    apply existsb_exists in Hw as (v & Hin & Hv'). destruct v as [o | k' o]; [discriminate |]. cbn in Hv'. apply andb_true_iff in Hv' as [H1 H2]. apply Z.eqb_eq in H1, H2. now subst.
Qed.

Lemma gc_check_ok w l : gc_check w l = true -> gc_ok w l.
Proof.
  unfold gc_check. rewrite !andb_true_iff. intros ((((Hl & Hnd) & Ho) & Hn) & Hc). apply bool_decide_eq_true in Hnd. apply Z.eqb_eq in Hn. apply Z.ltb_lt in Hc. pose proof (on_objects_all _ _ Ho) as Hall. unfold object_check in Hall.
  assert (Hobj : forall x ob, objects w !! x = Some ob -> In x l /\ word_ok (type_flags_refs ob) /\ marks_check w x = true /\ 0 < x < 536870912 /\ (length (weak_buffers (properties ob)) <= 1)%nat
    /\ (forall v, In v (weak_refs ob) -> mutual w holder_keys x v = true) /\ (forall v, In v (holder_keys ob) -> mutual w weak_refs x v = true) /\ NoDup (weak_refs ob) /\ NoDup (holder_keys ob) /\ releasable w ob = true).
  { intros x ob Hx. specialize (Hall x ob Hx). rewrite !andb_true_iff in Hall. destruct Hall as (((((((((((H1 & H2) & H3) & H4) & H5) & H6) & H7) & H8) & H9) & H10) & H11) & H12).
    apply existsb_exists in H1 as (z & Hz & Ez). apply Z.eqb_eq in Ez. subst z. apply Z.leb_le in H2. apply Z.ltb_lt in H3, H5, H6. apply Nat.leb_le in H7. rewrite forallb_forall in H8, H9. apply bool_decide_eq_true in H10, H11. unfold word_ok. now splits. }
  constructor; [constructor | constructor; [constructor |] | exact Hn | unfold is_u32; pose proof (zlength_nonneg l); lia].
  - now apply links_check_ok.
  - exact Hnd.
  - intros x [ob Hx]. now apply (Hobj x ob).
  - intros x f Hf. unfold flags_of in Hf. destruct (objects w !! x) as [ob |] eqn:E; [| discriminate]. injection Hf as <-. now apply (Hobj x ob).
  - intros x [ob Hx]. destruct (Hobj x ob Hx) as (_ & _ & Hm & _). destruct (marks_check_ok w x Hm) as (vs & E & H & _). now exists vs.
  - intros m k y (vs & Hvs & Hin). assert (Hx : exists ob, objects w !! m = Some ob) by (unfold marks in Hvs; destruct (objects w !! m) as [ob |]; [now exists ob | discriminate]). destruct Hx as [ob Hx].
    destruct (Hobj m ob Hx) as (_ & _ & Hm & _). destruct (marks_check_ok w m Hm) as (vs' & E & _ & H). rewrite Hvs in E. injection E as <-. now apply H.
  - intros x [ob Hx]. now apply (Hobj x ob).
  - intros x ob Hx. now apply (Hobj x ob).
  - intros k kob v Hk Hv. apply (mutual_ok w holder_keys k v). now apply (Hobj k kob).
  - intros h hob v Hh Hv. apply (mutual_ok w weak_refs h v). now apply (Hobj h hob).
  - intros x ob Hx. rewrite <- !NoDup_ListNoDup. split; now apply (Hobj x ob).
  - intros x ob Hx. now apply (Hobj x ob).
Qed.
