(* ===== verification/GcSpec.v ===== *)
(** * The garbage collector: what it promises

    The theorems about ecma_gc_run, and a heap with garbage, a cycle, a weak map and a weak
    reference. *)
From Stdlib Require Import ZArith Lia Bool List Permutation.
From stdpp Require Import base gmap list.
From S2P Require Import Prelude JmemPointers Values PropNames GcHeap GcMark Gc GcFree GcMarking GcChains GcRun GcSweep GcRelease GcObject GcClean GcHeapOk.
Import ListNotations.
#[local] Open Scope Z_scope.

(** ** What stays of an object *)

(** The entries of a weak container that are set *)
Definition weak_entries (ob : gc_object) : list (Z * Z) :=
  match class_of ob with Some (CLASS_CONTAINER (WEAKMAP_UL | WEAKSET_UL) _ entries) => List.filter (fun e => nonempty e.1) entries | _ => [] end.

(** The object [v] is a value of is reached *)
Definition live (w : gworld) (v : Z) : Prop := exists y, v = value_of y /\ reached w y.

(** [ob'] is what a collection of [w] that releases the objects [W] leaves of [ob]: its link
    changes and it forgets those objects one by one ([clean]), and that is all; in terms of
    what is reached, it keeps just the weak references and keys that are live, and its
    properties (its body) when it has no other ones *)
Record survives (w : gworld) (W : list Z) (ob ob' : gc_object) : Prop := {
  sv_forget : exists next, ob' = set_next next (forget W ob);
  sv_flags : type_flags_refs ob' = type_flags_refs ob;
  sv_u2 : u2_cp ob' = u2_cp ob;
  sv_hashmap : hashmap ob' = hashmap ob;
  sv_refs : forall v, In v (weak_refs ob') <-> In v (weak_refs ob) /\ live w v;
  sv_keys : forall v, In v (holder_keys ob') <-> In v (holder_keys ob) /\ live w v;
  sv_entries : forall e, In e (weak_entries ob') <-> In e (weak_entries ob) /\ live w e.1;
  sv_properties : (forall v, In v (weak_refs ob) -> live w v) -> properties ob' = properties ob;
  sv_body : (forall v, In v (holder_keys ob) -> live w v) -> body ob' = body ob
}.

Lemma weak_entries_clean u ob : u <> EMPTY -> weak_entries (clean u ob) = List.filter (fun e => negb (e.1 =? u)) (weak_entries ob).
Proof.
  intros Hu. unfold weak_entries, clean. destruct (clean_holder_spec u (clean_refs u ob)) as (_ & -> & _). rewrite (proj1 (clean_refs_holder u ob)). destruct (class_of ob) as [c |]; [| reflexivity].
  assert (H : forall id (entries : list (Z * Z)), id = WEAKMAP_UL \/ id = WEAKSET_UL -> List.filter (fun e => nonempty e.1) (map (clean_entry id u) entries) = List.filter (fun e => negb (e.1 =? u)) (List.filter (fun e => nonempty e.1) entries)).
  { intros id entries Hid. induction entries as [| e entries IH]; [reflexivity |]. cbn [map List.filter]. unfold clean_entry at 1 2. destruct (Z.eqb_spec e.1 u) as [E | Hne].
    - assert (Ee : (ecma_op_internal_buffer_delete id e).1.1 = EMPTY) by (now destruct Hid as [-> | ->]). rewrite Ee. change (nonempty EMPTY) with false. rewrite (proj2 (nonempty_true e.1)) by congruence. cbn [List.filter]. now rewrite E, Z.eqb_refl.
    - destruct (nonempty e.1); [| exact IH]. cbn [List.filter]. now rewrite (proj2 (Z.eqb_neq _ _) Hne), IH. }
  destruct c; try reflexivity; [destruct id; try reflexivity; cbn [clean_class fmap option_fmap option_map]; apply H; auto | cbn; now destruct (target =? u)].
Qed.

(** Forgetting a list of objects *)
Definition names (W : list Z) (v : Z) : Prop := exists x, In x W /\ v = value_of x.

Lemma in_forget {A} (get : gc_object -> list A) (key : A -> Z) W : (forall x, In x W -> 0 < x < 536870912) ->
  (forall u ob, u <> EMPTY -> get (clean u ob) = List.filter (fun a => negb (key a =? u)) (get ob)) -> forall ob a, In a (get (forget W ob)) <-> In a (get ob) /\ ~ names W (key a).
Proof.
  intros HW Hget. unfold forget. induction W as [| x W IH]; intros ob a; cbn [foldl].
  - split; [intros H; split; [exact H | now intros (x & [] & _)] | tauto].
  - rewrite IH by (intros; apply HW; now right). rewrite Hget by (apply value_not_empty, HW; now left). rewrite filter_In, negb_true_iff, Z.eqb_neq. split.
    + intros [[Ha Hx] Hn]. split; [exact Ha |]. intros (y & [<- | Hy] & E); [easy |]. apply Hn. now exists y.
    + intros [Ha Hn]. split; [split; [exact Ha |] |]; intros H; apply Hn; [exists x; split; [now left | exact H] | destruct H as (y & Hy & E); exists y; split; [now right | exact E]].
Qed.

Lemma forget_properties W : (forall x, In x W -> 0 < x < 536870912) -> forall ob, (forall v, In v (weak_refs ob) -> ~ names W v) -> properties (forget W ob) = properties ob.
Proof.
  intros HW. unfold forget. induction W as [| x W IH]; intros ob Hn; [reflexivity |]. cbn [foldl]. assert (Hx : 0 < x < 536870912) by (apply HW; now left). rewrite IH; [| intros; apply HW; now right |].
  - rewrite clean_properties_of. change (clean_properties (value_of x) (properties ob)) with (properties (clean_refs (value_of x) ob)). rewrite clean_refs_id; [reflexivity | now apply value_not_empty |]. intros H. apply (Hn _ H). exists x. split; [now left | reflexivity].
  - intros v Hv (y & Hy & E). rewrite weak_refs_clean, filter_In in Hv. apply (Hn v (proj1 Hv)). exists y. split; [now right | exact E].
Qed.

Lemma clean_body_id u ob : u <> EMPTY -> u <> ECMA_VALUE_UNDEFINED -> ~ In u (holder_keys ob) -> body (clean u ob) = body ob.
Proof. intros H1 H2 H. rewrite clean_body. unfold holder_keys, class_of in H. destruct (body ob); try reflexivity; now rewrite clean_class_id. Qed.

Lemma forget_body W : (forall x, In x W -> 0 < x < 536870912) -> forall ob, (forall v, In v (holder_keys ob) -> ~ names W v) -> body (forget W ob) = body ob.
Proof.
  intros HW. unfold forget. induction W as [| x W IH]; intros ob Hn; [reflexivity |]. cbn [foldl]. assert (Hx : 0 < x < 536870912) by (apply HW; now left). rewrite IH; [| intros; apply HW; now right |].
  - apply clean_body_id; [now apply (value_not_simple x 1) | now apply (value_not_simple x 9) |]. intros H. apply (Hn _ H). exists x. split; [now left | reflexivity].
  - intros v Hv (y & Hy & E). rewrite holder_keys_clean, filter_In in Hv. apply (Hn v (proj1 Hv)). exists y. split; [now right | exact E].
Qed.

Section Survivors.
Variables (w w' : gworld) (l W B : list Z).
Hypothesis Hok : gc_ok w l.
Hypothesis Hperm : Permutation l (W ++ B).
Hypothesis Hc : collected w W B w'.

Lemma in_chain x : In x l -> is_Some (objects w !! x).
Proof. exact (links_some w _ _ _ x (hk_chain _ _ (gk_heap _ _ Hok))). Qed.

Lemma released_range x : In x W -> 0 < x < 536870912.
Proof. intros Hx. apply (wo_range _ (sd_weak _ (gk_sound _ _ Hok))), in_chain, (Permutation_in x (Permutation_sym Hperm)). rewrite in_app_iff. now left. Qed.

(** A weak reference is to an object that is released or reached *)
Lemma live_names v : (exists y, v = value_of y /\ is_Some (objects w !! y)) -> ~ names W v <-> live w v.
Proof.
  intros (y & -> & Hy). assert (Ry := wo_range _ (sd_weak _ (gk_sound _ _ Hok)) y Hy). split.
  - intros Hn. exists y. split; [reflexivity |]. apply (cd_reached _ _ _ _ Hc). pose proof (hk_all _ _ (gk_heap _ _ Hok) y Hy) as Hl. apply (Permutation_in y Hperm) in Hl. rewrite in_app_iff in Hl. destruct Hl as [Hl | Hl]; [exfalso; apply Hn; now exists y | exact Hl].
  - intros (z & E & Hz) (x & Hx & E'). apply (cd_reached _ _ _ _ Hc) in Hz. assert (x = z) as ->.
    { apply value_inj; [now apply released_range | | congruence]. apply (wo_range _ (sd_weak _ (gk_sound _ _ Hok))), in_chain, (Permutation_in z (Permutation_sym Hperm)). rewrite in_app_iff. now right. }
    apply (after_apart w l W B Hok Hperm z Hz). now apply list_elem_of_In.
Qed.

Lemma refs_named x ob v : objects w !! x = Some ob -> In v (weak_refs ob) \/ In v (holder_keys ob) -> ~ names W v <-> live w v.
Proof.
  intros Hx Hv. apply live_names. destruct Hv as [Hv | Hv]; [destruct (wo_refs _ (sd_weak _ (gk_sound _ _ Hok)) x ob v Hx Hv) as (y & yob & -> & Hy & _) | destruct (wo_keys _ (sd_weak _ (gk_sound _ _ Hok)) x ob v Hx Hv) as (y & yob & -> & Hy & _)]; exists y; (split; [reflexivity | now exists yob]).
Qed.

Lemma entries_keys ob e : In e (weak_entries ob) -> In e.1 (holder_keys ob).
Proof.
  unfold weak_entries, holder_keys. destruct (class_of ob) as [c |]; [| easy]. destruct c; try easy. destruct id; try easy; cbn [class_keys]; rewrite !filter_In; intros [H1 H2]; (split; [now apply in_map | exact H2]).
Qed.

Lemma survivor x ob n : objects w !! x = Some ob -> survives w W ob (set_next n (forget W ob)).
Proof.
  intros Hx. pose proof released_range as HW. destruct (forget_spec W ob) as (E1 & _ & E2 & E3). pose proof (fun v Hv => refs_named x ob v Hx (or_introl Hv)) as Hrefs. pose proof (fun v Hv => refs_named x ob v Hx (or_intror Hv)) as Hkeys.
  constructor; [exists n; reflexivity | exact E1 | exact E2 | exact E3 | | | | |].
  - intros v. change (weak_refs (set_next n (forget W ob))) with (weak_refs (forget W ob)). rewrite (in_forget weak_refs (fun v => v) W HW) by (intros; apply weak_refs_clean). split; intros [Hv H]; (split; [exact Hv | now apply (Hrefs v Hv)]).
  - intros v. change (holder_keys (set_next n (forget W ob))) with (holder_keys (forget W ob)). rewrite (in_forget holder_keys (fun v => v) W HW) by (intros; apply holder_keys_clean). split; intros [Hv H]; (split; [exact Hv | now apply (Hkeys v Hv)]).
  - intros e. change (weak_entries (set_next n (forget W ob))) with (weak_entries (forget W ob)). rewrite (in_forget weak_entries fst W HW) by (intros; now apply weak_entries_clean). split; intros [He H]; (split; [exact He | now apply (Hkeys e.1 (entries_keys ob e He))]).
  - intros H. apply forget_properties; [exact HW |]. intros v Hv. apply (Hrefs v Hv). now apply H.
  - intros H. apply forget_body; [exact HW |]. intros v Hv. apply (Hkeys v Hv). now apply H.
Qed.

Lemma released_unreached x : In x W <-> is_Some (objects w !! x) /\ ~ reached w x.
Proof.
  rewrite <- (cd_reached _ _ _ _ Hc). split.
  - intros Hx. split; [apply in_chain, (Permutation_in x (Permutation_sym Hperm)); rewrite in_app_iff; now left |]. intros HB. apply (after_apart w l W B Hok Hperm x HB). now apply list_elem_of_In.
  - intros [Hx Hn]. pose proof (hk_all _ _ (gk_heap _ _ Hok) x Hx) as Hl. apply (Permutation_in x Hperm) in Hl. rewrite in_app_iff in Hl. now destruct Hl.
Qed.
End Survivors.

(** ** A heap *)

(** Object 1 is referenced and has 2 as a property, whose prototype is 3; 4 and 5 are a cycle;
    the weak map 6 has the values 7 for 2 and 8 for 4; the weak reference 9 is to 5. *)
Definition unused_slot : gc_slot := mk_slot ECMA_PROPERTY_TYPE_DELETED 0 UNUSED.
Definition data_pair (o : Z) : gc_pair := (mk_slot 39 100 (DATA (value_of o)), unused_slot).
Definition weak_pair (holders : list Z) : gc_pair := (mk_slot ECMA_PROPERTY_INTERNAL 4 (WEAK_REFS (map value_of holders)), unused_slot).
Definition demo_object (refs type next proto : Z) (b : object_body) (ps : list gc_pair) : gc_object := mk_gc_object (32 * refs + 16 + type) next proto b false ps.
Definition demo_objects : gmap Z gc_object := list_to_map [
  (1, demo_object 1 0 2 0 GENERAL [data_pair 2]);
  (2, demo_object 0 0 3 3 GENERAL [weak_pair [6]]);
  (3, demo_object 0 0 4 0 GENERAL []);
  (4, demo_object 0 0 5 0 GENERAL [data_pair 5; weak_pair [6]]);
  (5, demo_object 0 0 6 0 GENERAL [data_pair 4; weak_pair [9]]);
  (6, demo_object 1 2 7 0 (CLASS (CLASS_CONTAINER WEAKMAP_UL 2 [(value_of 2, value_of 7); (value_of 4, value_of 8)])) []);
  (7, demo_object 0 0 8 0 GENERAL []);
  (8, demo_object 0 0 9 0 GENERAL []);
  (9, demo_object 1 2 0 0 (CLASS (CLASS_WEAKREF (value_of 5))) [])].
Definition demo (limit : Z) : gworld := mk_gworld demo_objects ∅ ∅ 1 limit 9 5 [].
Definition demo_chain : list Z := [1; 2; 3; 4; 5; 6; 7; 8; 9].

Example demo_checked : gc_check (demo 1) demo_chain && gc_check (demo 0) demo_chain = true.
Proof. vm_compute. reflexivity. Qed.

Lemma demo_ok limit : limit = 0 \/ limit = 1 -> gc_ok (demo limit) demo_chain.
Proof. intros H. apply gc_check_ok. pose proof demo_checked as C. apply andb_true_iff in C as [C1 C0]. now destruct H as [-> | ->]. Qed.

Definition left_in (w : gworld) : list Z := List.filter (present w) demo_chain.

Example demo_collected : (match ecma_gc_run (demo 1) with
  | Some w => bool_decide (left_in w = [1; 2; 3; 6; 7; 9]) && (ecma_gc_objects_number w =? 6) && match objects w !! 6 with Some ob => bool_decide (weak_entries ob = [(value_of 2, value_of 7)]) | None => false end
  | None => false end) = true.
Proof. vm_compute. reflexivity. Qed.

(** Worlds whose objects differ in the links of the chain alone *)
Definition same_but_links (w1 w2 : gworld) : Prop := forall x, exists n, objects w2 !! x = set_next n <$> objects w1 !! x.

(** [w'] has all objects of [w] but [x], which nothing knows any more *)
Definition without (x : Z) (w w' : gworld) : Prop :=
  objects w' !! x = None /\ forall y ob, y <> x -> objects w !! y = Some ob -> objects w' !! y = Some (clean (value_of x) ob) /\ ~ In (value_of x) (weak_refs (clean (value_of x) ob)) /\ ~ In (value_of x) (holder_keys (clean (value_of x) ob)).

(** ** The theorems *)

(** C4: A collection follows nothing that is not there, whatever the heap is made of, and
    ends with a well-formed heap.  It releases just the objects that the program's references
    do not reach, the values of a weak map counting when map and key are reached, and keeps
    the others; what it keeps is as before, exactly, but for the link of the chain and for
    what its weak collections and weak references knew of released objects, which it forgets
    as at the release of one object ([ecma_gc_free_object_without]).  The mark limit must not
    be zero. *)
Theorem ecma_gc_run_keeps_reached (w : gworld) (l : list Z) : gc_ok w l -> gc_mark_limit w <> 0 ->
  exists w' W B, ecma_gc_run w = Some w' /\ gc_ok w' B /\ ecma_gc_new_objects w' = 0
    /\ (forall x, In x W <-> is_Some (objects w !! x) /\ ~ reached w x)
    /\ (forall x, is_Some (objects w' !! x) <-> reached w x)
    /\ (forall x ob, objects w !! x = Some ob -> reached w x -> exists ob', objects w' !! x = Some ob' /\ survives w W ob ob').
Proof.
  intros Hok Hlimit. destruct (collect_run w l Hok Hlimit) as (w' & W & B & E & Hp & Hc). exists w', W, B. split; [exact E |]. split; [exact (heap_after w w' l W B Hok Hp Hc) |]. split; [exact (cd_new _ _ _ _ Hc) |]. split; [| split].
  - exact (released_unreached w w' l W B Hok Hp Hc).
  - intros x. rewrite <- (cd_reached _ _ _ _ Hc). split; [exact (after_in w w' W B Hc x) | exact (after_some w w' l W B Hok Hc x)].
  - intros x ob Hx Hr. apply (cd_reached _ _ _ _ Hc) in Hr. destruct (cd_kept _ _ _ _ Hc x ob Hr Hx) as [n En]. eexists. split; [exact En |]. exact (survivor w w' l W B Hok Hp Hc x ob n Hx).
Qed.

Lemma ecma_gc_run_keeps_reached_witness : exists w' W B, ecma_gc_run (demo 1) = Some w' /\ gc_ok w' B /\ ecma_gc_new_objects w' = 0
    /\ (forall x, In x W <-> is_Some (objects (demo 1) !! x) /\ ~ reached (demo 1) x)
    /\ (forall x, is_Some (objects w' !! x) <-> reached (demo 1) x)
    /\ (forall x ob, objects (demo 1) !! x = Some ob -> reached (demo 1) x -> exists ob', objects w' !! x = Some ob' /\ survives (demo 1) W ob ob').
Proof. apply (ecma_gc_run_keeps_reached (demo 1) demo_chain); [apply demo_ok; now right | discriminate]. Defined.

(** Right after a collection there is nothing to collect: a second one releases no
    object and changes no more than the links of the chain. *)
Theorem ecma_gc_run_again (w : gworld) (l : list Z) : gc_ok w l -> gc_mark_limit w <> 0 ->
  exists w1 w2, ecma_gc_run w = Some w1 /\ ecma_gc_run w1 = Some w2 /\ ecma_gc_objects_number w2 = ecma_gc_objects_number w1 /\ same_but_links w1 w2.
Proof. exact (collect_twice w l). Qed.

Lemma ecma_gc_run_again_witness : exists w1 w2, ecma_gc_run (demo 1) = Some w1 /\ ecma_gc_run w1 = Some w2 /\ ecma_gc_objects_number w2 = ecma_gc_objects_number w1
  /\ same_but_links w1 w2.
Proof. apply (ecma_gc_run_again (demo 1) demo_chain); [apply demo_ok; now right | discriminate]. Defined.

(** C5: The release of one object, of any type: weak maps, weak sets and weak references that
    hold it, and the objects that it holds weakly, forget it and nothing else of them changes;
    what the release of the other objects relies on still holds. *)
Theorem ecma_gc_free_object_without (w : gworld) (x : Z) (ob : gc_object) : sound w -> objects w !! x = Some ob ->
  exists w', ecma_gc_free_object x w = Some w' /\ sound w' /\ without x w w' /\ ecma_gc_objects_number w' = u32 (ecma_gc_objects_number w - 1).
Proof.
  intros Hs Hx. destruct (free_object_run w x ob (sd_weak _ Hs) Hx (sd_releasable _ Hs x ob Hx)) as (w' & E & Hr). exists w'. split; [exact E |]. split; [apply (released_sound w x w' Hs); [now exists ob | exact Hr] |].
  split; [| exact (ef_number _ _ (re_effect _ _ _ Hr))]. split; [rewrite (re_objects _ _ _ Hr); now rewrite decide_True |]. intros y oby Hne Hy. split; [exact (released_other w x w' y oby Hr Hne Hy) |].
  rewrite weak_refs_clean, holder_keys_clean, !filter_In, Z.eqb_refl. easy.
Qed.

Lemma ecma_gc_free_object_without_witness : exists w', ecma_gc_free_object 6 (demo 1) = Some w' /\ sound w' /\ without 6 (demo 1) w' /\ ecma_gc_objects_number w' = u32 (ecma_gc_objects_number (demo 1) - 1).
Proof.
  apply (ecma_gc_free_object_without (demo 1) 6 (demo_object 1 2 7 0 (CLASS (CLASS_CONTAINER WEAKMAP_UL 2 [(value_of 2, value_of 7); (value_of 4, value_of 8)])) [])); [exact (gk_sound _ _ (demo_ok 1 (or_intror eq_refl))) | vm_compute; reflexivity].
Defined.

(** With a mark limit of zero, documented as no limit, no visit follows from the objects
    that a root leads to: in a well-formed heap, the prototype of a property's object is
    released while the object that refers to it stays. *)
Example gc_mark_limit_zero_releases_reached : gc_ok (demo 0) demo_chain /\ reached (demo 0) 3
  /\ exists w' ob, ecma_gc_run (demo 0) = Some w' /\ objects w' !! 2 = Some ob /\ u2_cp ob = 3 /\ objects w' !! 3 = None.
Proof.
  split; [apply demo_ok; now left |]. split.
  - assert (H : forall x, root_check (demo 0) x = true -> reached (demo 0) x) by (intros x Hx; apply reached_root; now apply root_check_ok).
    assert (Hv : forall x y, match marks (demo 0) x with Some vs => existsb (fun v => match v with VISIT o => o =? y | _ => false end) vs | None => false end = true -> knows (demo 0) x (VISIT y)).
    { intros x y Hxy. destruct (marks (demo 0) x) as [vs |] eqn:E; [| discriminate]. exists vs. split; [exact E |]. apply existsb_exists in Hxy as (v & Hin & Hv). destruct v as [o |]; [| discriminate]. apply Z.eqb_eq in Hv. now subst. }
    apply (reached_visit _ 2 3); [apply (reached_visit _ 1 2); [apply H; now vm_compute |] |]; apply Hv; now vm_compute.
  - assert (C : match ecma_gc_run (demo 0) with Some w' => match objects w' !! 2, objects w' !! 3 with Some ob, None => u2_cp ob =? 3 | _, _ => false end | None => false end = true) by now vm_compute.
    destruct (ecma_gc_run (demo 0)) as [w' |]; [| discriminate]. destruct (objects w' !! 2) as [ob |] eqn:E2; [| discriminate]. destruct (objects w' !! 3) eqn:E3; [discriminate |]. exists w', ob. split; [reflexivity |]. split; [exact E2 |]. split; [now apply Z.eqb_eq | exact E3].
Qed.
