(* ===== verification/JobQueue.v ===== *)
(** * Promises and the job queue: the data, and enqueuing

    The objects that ecma-promise-object.c works on, and the queue of ecma-jobqueue.c: jobs
    linked in order, with a pointer to the first and to the last one.  [None] is a failed
    assertion, or following what is not there.  Values are compared by identity: an object
    is its address.  At the end: the linked queue is a list. *)
From Stdlib Require Import ZArith Lia Bool List.
From stdpp Require Import base gmap list.
From S2P Require Import Prelude.
Import ListNotations.
#[local] Open Scope Z_scope.
#[local] Open Scope partial_scope.

(** ** Values and objects *)

Inductive value := UNDEFINED | NULL | TRUE | FALSE | OBJECT (o : positive) | PRIMITIVE (n : Z).

#[export] Instance value_eq_dec : EqDecision value.
Proof. solve_decision. Defined.

(** An item of the reactions of a promise: an object with the three tag bits, or a handler *)
Inductive item := TAGGED (o : positive) (first second third : bool) | HANDLER (v : value).

Definition ECMA_PROMISE_IS_PENDING : Z := 1.
Definition ECMA_PROMISE_IS_FULFILLED : Z := 2.
Definition ECMA_PROMISE_ALREADY_RESOLVED : Z := 4.
Definition ECMA_PROMISE_UNHANDLED_REJECT : Z := 8.

Inductive object :=
| PROMISE (promise_flags : Z) (result : value) (reactions : list item)
| PROMISE_CAPABILITY (promise resolve reject : value)
| PROMISE_RESOLVE (promise : positive) (** the native handlers *)
| PROMISE_REJECT (promise : positive)
| PROMISE_CAPABILITY_EXECUTOR (capability : positive)
| PROMISE_THEN_FINALLY (constructor on_finally : value)
| PROMISE_CATCH_FINALLY (constructor on_finally : value)
| VALUE_THUNK (v : value)
| VALUE_THROWER (v : value)
| PROMISE_CONSTRUCTOR (** the built-in Promise *)
| FUNCTION (is_constructor : bool) (** a function of the program, the embedder or another part of the engine *)
| EXECUTABLE (** a suspended function *)
| ORDINARY.

#[export] Instance item_eq_dec : EqDecision item.
Proof. solve_decision. Defined.
#[export] Instance object_eq_dec : EqDecision object.
Proof. solve_decision. Defined.

(** ** Jobs *)

Inductive job :=
| ECMA_JOB_PROMISE_REACTION (capability : positive) (handler argument : value)
| ECMA_JOB_PROMISE_ASYNC_REACTION (rejected : bool) (executable_object : positive) (argument : value) (** _FULFILLED and _REJECTED *)
| ECMA_JOB_PROMISE_ASYNC_GENERATOR (executable_object : positive)
| ECMA_JOB_PROMISE_THENABLE (promise : positive) (thenable then_function : value)
| ECMA_JOB_MICROTASK (callback : value).

(** ** State *)

(** What a capability is for, when its constructor returns *)
Inductive capability_use :=
| FOR_THEN (promise : positive) (on_fulfilled on_rejected : value) (** ecma_promise_then *)
| FOR_RESOLVE (v : value) (is_resolve : bool) (** ecma_promise_reject_or_resolve *)
| FOR_RESOLVERS. (** ecma_promise_with_resolvers *)

(** What the species of an object is for *)
Inductive species_use :=
| SPECIES_THEN (promise : positive) (on_fulfilled on_rejected : value) (** ecma_promise_then *)
| SPECIES_FINALLY (promise : positive) (on_finally : value). (** ecma_promise_finally *)

(** The native functions that wait for a call; [PROGRAM] is the program, which called a native function *)
Inductive frame :=
| PROGRAM
| FULFILL (promise : positive) (v : value) (** ecma_fulfill_promise, for the property then *)
| REJECT_UNHANDLED (promise : positive) (** ecma_reject_promise, for the embedder's callback *)
| CREATE_EXECUTOR (promise : positive) (** ecma_op_create_promise_object, for the executor *)
| CREATE_REJECT (promise : positive) (** the same, for the rejection after it *)
| NEW_CAPABILITY (capability : positive) (use : capability_use) (** ecma_promise_new_capability, for the constructor *)
| SPECIES_CONSTRUCTOR (use : species_use) (** ecma_op_species_constructor, for the property constructor *)
| SPECIES_SYMBOL (use : species_use) (** the same, for its species *)
| RESOLVE_CONSTRUCTOR (this_arg v : value) (** ecma_promise_reject_or_resolve, for the property constructor *)
| RESOLVE_CALL (capability : positive) (** the same, for the function of the capability *)
| PUT_RESOLVERS (object : positive) (count : nat) (** ecma_promise_with_resolvers, for a property it sets *)
| INVOKE_THEN (args : list value) (** ecma_op_invoke, for the property then *)
| FINALLY_CALL (constructor arg : value) (throws : bool) (** ecma_promise_then_catch_finally_helper, for on_finally *)
| FINALLY_PROMISE (arg : value) (throws : bool) (** the same, for the promise *)
| REACTION_HANDLER (job_p : positive) (** ecma_process_promise_reaction_job, for the handler *)
| REACTION_SETTLE (job_p : positive) (** the same, for the function of the capability *)
| THENABLE_THEN (job_p : positive) (** ecma_process_promise_resolve_thenable_job, for the executor *)
| THENABLE_REJECT (job_p : positive) (** the same, for the rejection after it *)
| JOB_DONE (job_p : positive) (** the other jobs *)
| PROCESS_JOBS. (** ecma_process_all_enqueued_jobs *)

Inductive completion := NORMAL (v : value) | THROW (v : value).

(** The program runs, or a call has returned to the topmost frame *)
Inductive control := RUN | RETURN (c : completion).

(** What happened, for the theorems; the engine keeps none of it.  [source] is the promise whose
    reaction a job is. *)
Inductive reaction := ON_SETTLE (capability : positive) (on_fulfilled on_rejected : value) | ON_AWAIT (executable_object : positive).
Inductive event := REGISTERED (promise : positive) (r : reaction) | ENQUEUED (source : option positive) (j : job) | STARTED (j : job).

(** [vm_promises] are the promises that the interpreter settles, [true] until it does *)
Record jworld := mk_jworld {
  objects : gmap positive object;
  jobs : gmap positive (job * option positive);
  job_queue_head_p : option positive;
  job_queue_tail_p : option positive;
  vm_promises : gmap positive bool;
  history : list event
}.

Record state := mk_state { world : jworld; ctl : control; frames : list frame }.

Definition set_object (o : positive) (ob : object) (w : jworld) : jworld := mk_jworld (<[o := ob]> (objects w)) (jobs w) (job_queue_head_p w) (job_queue_tail_p w) (vm_promises w) (history w).
Definition set_queue (js : gmap positive (job * option positive)) (head tail : option positive) (w : jworld) : jworld := mk_jworld (objects w) js head tail (vm_promises w) (history w).
Definition set_vm (p : positive) (open : bool) (w : jworld) : jworld := mk_jworld (objects w) (jobs w) (job_queue_head_p w) (job_queue_tail_p w) (<[p := open]> (vm_promises w)) (history w).
Definition record (e : event) (w : jworld) : jworld := mk_jworld (objects w) (jobs w) (job_queue_head_p w) (job_queue_tail_p w) (vm_promises w) (history w ++ [e]).

(** A new object *)
Definition fresh_object (w : jworld) : positive := fresh (dom (objects w)).
Definition create_object (ob : object) (w : jworld) : positive * jworld := (fresh_object w, set_object (fresh_object w) ob w).

Definition object_at (w : jworld) (v : value) : option object := match v with OBJECT o => objects w !! o | _ => None end.
Definition ecma_op_is_callable (w : jworld) (v : value) : bool :=
  match object_at w v with
  | Some (PROMISE_RESOLVE _ | PROMISE_REJECT _ | PROMISE_CAPABILITY_EXECUTOR _ | PROMISE_THEN_FINALLY _ _ | PROMISE_CATCH_FINALLY _ _ | VALUE_THUNK _ | VALUE_THROWER _ | PROMISE_CONSTRUCTOR | FUNCTION _) => true
  | _ => false
  end.
Definition ecma_is_constructor (w : jworld) (v : value) : bool := match object_at w v with Some (PROMISE_CONSTRUCTOR | FUNCTION true) => true | _ => false end.
Definition ecma_is_promise (w : jworld) (o : positive) : bool := match objects w !! o with Some (PROMISE _ _ _) => true | _ => false end.

Definition return_value (v : value) (k : list frame) (w : jworld) : option state := Some (mk_state w (RETURN (NORMAL v)) k).
Definition throw_value (v : value) (k : list frame) (w : jworld) : option state := Some (mk_state w (RETURN (THROW v)) k).
Definition ecma_raise_type_error (k : list frame) (w : jworld) : option state := let '(e, w) := create_object ORDINARY w in throw_value (OBJECT e) k w.

(** ** Enqueuing *)

Definition fresh_job (w : jworld) : positive := fresh (dom (jobs w)).

(** The job is linked behind the last one *)
Definition ecma_enqueue_job (source : option positive) (j : job) (w : jworld) : option jworld :=
  let job_p := fresh_job w in
  let js := <[job_p := (j, None)]> (jobs w) in
  let w := record (ENQUEUED source j) w in
  match job_queue_head_p w with
  | None => Some (set_queue js (Some job_p) (Some job_p) w)
  | Some head =>
      let? tail := job_queue_tail_p w in
      match js !! tail with Some (jt, None) => Some (set_queue (<[tail := (jt, Some job_p)]> js) (Some head) (Some job_p) w) | _ => None end
  end.

Definition ecma_enqueue_promise_reaction_job (source capability : positive) (handler argument : value) : jworld -> option jworld :=
  ecma_enqueue_job (Some source) (ECMA_JOB_PROMISE_REACTION capability handler argument).
Definition ecma_enqueue_promise_async_reaction_job (source executable_object : positive) (argument : value) (is_rejected : bool) : jworld -> option jworld :=
  ecma_enqueue_job (Some source) (ECMA_JOB_PROMISE_ASYNC_REACTION is_rejected executable_object argument).
Definition ecma_enqueue_promise_async_generator_job (executable_object : positive) : jworld -> option jworld := ecma_enqueue_job None (ECMA_JOB_PROMISE_ASYNC_GENERATOR executable_object).

Definition ecma_enqueue_promise_resolve_thenable_job (promise : positive) (thenable then_function : value) (w : jworld) : option jworld :=
  match thenable with
  | OBJECT _ => if ecma_is_promise w promise && ecma_op_is_callable w then_function then ecma_enqueue_job None (ECMA_JOB_PROMISE_THENABLE promise thenable then_function) w else None
  | _ => None
  end.

Definition ecma_enqueue_microtask_job (callback : value) (w : jworld) : option jworld := if ecma_op_is_callable w callback then ecma_enqueue_job None (ECMA_JOB_MICROTASK callback) w else None.

Definition ecma_job_queue_init (w : jworld) : jworld := set_queue (jobs w) None None w.
Definition ecma_has_enqueued_jobs (w : jworld) : bool := match job_queue_head_p w with Some _ => true | None => false end.
Definition ecma_job_queue_get_next (w : jworld) (job_p : positive) : option (option positive) := snd <$> jobs w !! job_p.

(** ** Releasing jobs *)

Definition job_at (w : jworld) (job_p : positive) : option job := fst <$> jobs w !! job_p.

(** The ecma_free functions of the types of jobs; the values in them are collected *)
Definition free_job (job_p : positive) (w : jworld) : jworld := set_queue (delete job_p (jobs w)) (job_queue_head_p w) (job_queue_tail_p w) w.

Fixpoint free_enqueued_jobs (fuel : nat) (w : jworld) : option jworld :=
  match job_queue_head_p w, fuel with
  | None, _ => Some w
  | Some _, O => None
  | Some job_p, S fuel => let? next := ecma_job_queue_get_next w job_p in free_enqueued_jobs fuel (free_job job_p (set_queue (jobs w) next (job_queue_tail_p w) w))
  end.

(** The blocks bound the loop *)
Definition ecma_free_all_enqueued_jobs (w : jworld) : option jworld := free_enqueued_jobs (size (jobs w)) w.

(** ** The queue of jobs is a list

    [queue_of]: the jobs linked from the first one, in order; with the blocks of the jobs
    that run they are all blocks there are.  Enqueuing appends, taking the first job moves
    its block to the running ones. *)

(** ** Events *)

Definition enqueued (h : list event) : list job := omap (fun e => match e with ENQUEUED _ j => Some j | _ => None end) h.
Definition started (h : list event) : list job := omap (fun e => match e with STARTED j => Some j | _ => None end) h.
Definition registered (p : positive) (h : list event) : list reaction := omap (fun e => match e with REGISTERED q r => if decide (q = p) then Some r else None | _ => None end) h.
Definition scheduled (p : positive) (h : list event) : list job := omap (fun e => match e with ENQUEUED (Some q) j => if decide (q = p) then Some j else None | _ => None end) h.

Lemma omap_events_app {A} (f : event -> option A) (h e : list event) : omap f (h ++ e) = omap f h ++ omap f e.
Proof. apply omap_app. Qed.

(** ** The list of jobs *)

Fixpoint linked (js : gmap positive (job * option positive)) (head : option positive) (q : list (positive * job)) (last : option positive) : Prop :=
  match q with
  | [] => head = last
  | (job_p, j) :: q => head = Some job_p /\ exists next, js !! job_p = Some (j, next) /\ linked js next q last
  end.

Lemma linked_app (js : gmap positive (job * option positive)) (q1 q2 : list (positive * job)) (h e : option positive) :
  linked js h (q1 ++ q2) e <-> exists m, linked js h q1 m /\ linked js m q2 e.
Proof.
  revert h; induction q1 as [|[jp j] q1 IH]; intros h; cbn.
  - split; [intros H; exists h; auto | intros (m & -> & H); exact H].
  - split.
    + intros (-> & next & Hn & H); apply IH in H as (m & H1 & H2); exists m; split; [|exact H2]; eauto.
    + intros (m & (-> & next & Hn & H1) & H2); split; [reflexivity|]; exists next; split; [exact Hn|]; apply IH; eauto.
Qed.

Lemma linked_same (js js' : gmap positive (job * option positive)) (q : list (positive * job)) (h e : option positive) :
  (forall jp, jp ∈ q.*1 -> js' !! jp = js !! jp) -> linked js h q e -> linked js' h q e.
Proof.
  revert h; induction q as [|[jp j] q IH]; intros h Hs; cbn; [auto|].
  intros (-> & next & Hn & H); split; [reflexivity|]; exists next; rewrite Hs by (left; reflexivity); split; [exact Hn|].
  apply IH; [|exact H]; intros jp' Hjp; apply Hs; right; exact Hjp.
Qed.

(** [running] are the blocks of the jobs that run *)
Record queue_rep (w : jworld) (running : list positive) (q : list (positive * job)) : Prop := {
  queue_linked : linked (jobs w) (job_queue_head_p w) q None;
  queue_tail : q <> [] -> job_queue_tail_p w = last q.*1;
  queue_apart : NoDup (q.*1 ++ running);
  queue_blocks : forall jp, is_Some (jobs w !! jp) <-> jp ∈ q.*1 ++ running
}.

Definition queue_of (w : jworld) (running : list positive) (qj : list job) : Prop := exists q, queue_rep w running q /\ q.*2 = qj.

(** [js] are enqueued, nothing else *)
Record added (source : option positive) (js : list job) (running : list positive) (qj : list job) (w w' : jworld) : Prop := {
  added_objects : objects w' = objects w;
  added_vm : vm_promises w' = vm_promises w;
  added_history : history w' = history w ++ (ENQUEUED source <$> js);
  added_queue : queue_of w' running (qj ++ js);
  added_running : forall jp, jp ∈ running -> job_at w' jp = job_at w jp
}.

Lemma added_nothing (source : option positive) (running : list positive) (qj : list job) (w : jworld) : queue_of w running qj -> added source [] running qj w w.
Proof. intros H; constructor; cbn; rewrite ?app_nil_r; auto. Qed.

Lemma added_trans (source : option positive) (js1 js2 : list job) (running : list positive) (qj : list job) (w w1 w2 : jworld) :
  added source js1 running qj w w1 -> added source js2 running (qj ++ js1) w1 w2 -> added source (js1 ++ js2) running qj w w2.
Proof.
  intros A B; constructor.
  - rewrite (added_objects _ _ _ _ _ _ B); apply (added_objects _ _ _ _ _ _ A).
  - rewrite (added_vm _ _ _ _ _ _ B); apply (added_vm _ _ _ _ _ _ A).
  - rewrite (added_history _ _ _ _ _ _ B), (added_history _ _ _ _ _ _ A), fmap_app, app_assoc; reflexivity.
  - rewrite app_assoc; apply (added_queue _ _ _ _ _ _ B).
  - intros jp H; rewrite (added_running _ _ _ _ _ _ B jp H); apply (added_running _ _ _ _ _ _ A jp H).
Qed.

Lemma fresh_job_free (w : jworld) : jobs w !! fresh_job w = None.
Proof. apply (not_elem_of_dom (jobs w)); unfold fresh_job; apply is_fresh. Qed.

Lemma fresh_job_apart (w : jworld) (running : list positive) (q : list (positive * job)) : queue_rep w running q -> fresh_job w ∉ q.*1 ++ running.
Proof. intros Q H; apply (queue_blocks _ _ _ Q) in H as [x Hx]; rewrite fresh_job_free in Hx; discriminate. Qed.

(** The new block is linked behind the last one *)
Lemma ecma_enqueue_job_added (source : option positive) (j : job) (running : list positive) (qj : list job) (w : jworld) :
  queue_of w running qj -> exists w', ecma_enqueue_job source j w = Some w' /\ added source [j] running qj w w'.
Proof.
  intros (q & Q & <-); pose proof (fresh_job_apart w running q Q) as Hf; pose proof (queue_linked _ _ _ Q) as HL.
  assert (Hfq : fresh_job w ∉ q.*1) by (intros H; apply Hf, elem_of_app; left; exact H).
  assert (Hfr : fresh_job w ∉ running) by (intros H; apply Hf, elem_of_app; right; exact H).
  unfold ecma_enqueue_job; cbn [record job_queue_head_p job_queue_tail_p].
  destruct q as [|[hp hj] q'] using rev_ind; [|clear IHq'].
  - cbn in HL; rewrite HL; eexists; split; [reflexivity|]; constructor; try reflexivity.
    + exists [(fresh_job w, j)]; split; [|reflexivity]; constructor; cbn.
      * split; [reflexivity|]; exists None; rewrite lookup_insert_eq; auto.
      * reflexivity.
      * constructor; [exact Hfr|]; apply (queue_apart _ _ _ Q).
      * intros jp; rewrite lookup_insert_is_Some; rewrite (queue_blocks _ _ _ Q jp); cbn; rewrite elem_of_cons.
        destruct (decide (jp = fresh_job w)) as [->|Hne]; [intuition|]; intuition.
    + intros jp Hjp; unfold job_at; cbn; rewrite lookup_insert_ne; [reflexivity|]; intros <-; contradiction.
  - apply linked_app in HL as (m & HL1 & (-> & next & Hn & Hnext)); cbn in Hnext; subst next.
    assert (Ht : job_queue_tail_p w = Some hp).
    { rewrite (queue_tail _ _ _ Q) by (intros E; apply app_eq_nil in E as [_ E]; discriminate).
      rewrite fmap_app; cbn; apply last_snoc. }
    assert (Hh : exists hd, job_queue_head_p w = Some hd) by (destruct q' as [|[a b] q']; cbn in HL1; [exists hp; exact HL1 | destruct HL1 as [HL1 _]; exists a; exact HL1]).
    destruct Hh as [hd Hhd]; rewrite Hhd, Ht; cbn.
    assert (Hne : fresh_job w <> hp) by (intros E; rewrite <- E, fresh_job_free in Hn; discriminate).
    rewrite lookup_insert_ne by exact Hne; rewrite Hn.
    pose proof (queue_apart _ _ _ Q) as ND; rewrite fmap_app in ND; cbn in ND.
    assert (Hhp : hp ∉ q'.*1 /\ hp ∉ running).
    { rewrite <- app_assoc in ND; cbn in ND; apply NoDup_app in ND as (_ & H1 & H2); apply NoDup_cons in H2 as [H2 _]; split; [|exact H2].
      intros H; apply (H1 hp H); left; reflexivity. }
    destruct Hhp as [Hhp Hhr].
    eexists; split; [reflexivity|]; constructor; try reflexivity.
    + exists ((q' ++ [(hp, hj)]) ++ [(fresh_job w, j)]); split; [|rewrite !fmap_app; reflexivity]; constructor; cbn.
      * apply linked_app; exists (Some (fresh_job w)); split.
        { apply linked_app; exists (Some hp); split.
          - rewrite <- Hhd; eapply linked_same; [|exact HL1]; intros jp Hjp; rewrite !lookup_insert_ne; [reflexivity | |].
            + intros <-; apply Hfq; rewrite fmap_app; apply elem_of_app; left; exact Hjp.
            + intros <-; contradiction.
          - cbn; split; [reflexivity|]; exists (Some (fresh_job w)); rewrite lookup_insert_eq; auto. }
        cbn; split; [reflexivity|]; exists None; rewrite lookup_insert_ne by (apply not_eq_sym; exact Hne); rewrite lookup_insert_eq; auto.
      * intros _; rewrite fmap_app; cbn; rewrite last_snoc; reflexivity.
      * rewrite !fmap_app; cbn; rewrite <- app_assoc; cbn.
        apply NoDup_Permutation_proper with (fresh_job w :: (q'.*1 ++ [hp]) ++ running); [symmetry; apply Permutation_middle|].
        constructor; [|exact ND]; rewrite fmap_app in Hf; exact Hf.
      * intros jp; rewrite !lookup_insert_is_Some, (queue_blocks _ _ _ Q jp), !fmap_app; cbn; rewrite !elem_of_app, !elem_of_cons.
        assert (Hne' : hp <> fresh_job w) by congruence; set_solver.
    + intros jp Hjp; unfold job_at; cbn; rewrite !lookup_insert_ne; [reflexivity | intros <-; contradiction | intros <-; contradiction].
Qed.

(** Taking the first job *)
Lemma queue_take (w : jworld) (running : list positive) (qj : list job) (job_p : positive) :
  job_queue_head_p w = Some job_p -> queue_of w running qj ->
  exists j next qj', qj = j :: qj' /\ jobs w !! job_p = Some (j, next) /\ queue_of (set_queue (jobs w) next (job_queue_tail_p w) w) (job_p :: running) qj'.
Proof.
  intros Hh (q & Q & <-); destruct Q as [HL HT HA HB]; destruct q as [|[jp j] q]; cbn in HL; [congruence|].
  destruct HL as (He & next & Hn & HL); rewrite Hh in He; injection He as <-.
  exists j, next, q.*2; split; [reflexivity|]; split; [exact Hn|]; exists q; split; [|reflexivity]; cbn in HA, HB; constructor; cbn.
  - exact HL.
  - intros Hne; rewrite HT by discriminate; cbn; destruct q; [congruence|]; reflexivity.
  - apply NoDup_Permutation_proper with (job_p :: q.*1 ++ running); [symmetry; apply Permutation_middle | exact HA].
  - intros jp; rewrite (HB jp), elem_of_cons, !elem_of_app, elem_of_cons; tauto.
Qed.

Lemma queue_empty (w : jworld) (running : list positive) (qj : list job) : job_queue_head_p w = None -> queue_of w running qj -> qj = [].
Proof. intros Hh (q & Q & <-); pose proof (queue_linked _ _ _ Q) as HL; destruct q as [|[jp j] q]; [reflexivity|]; cbn in HL; rewrite Hh in HL; destruct HL; discriminate. Qed.

(** Releasing a running job *)
Lemma queue_free (w : jworld) (running : list positive) (qj : list job) (job_p : positive) :
  queue_of w (job_p :: running) qj -> queue_of (free_job job_p w) running qj.
Proof.
  intros (q & Q & <-); destruct Q as [HL HT HA HB]; exists q; split; [|reflexivity].
  assert (HA' : NoDup (job_p :: q.*1 ++ running)) by (eapply NoDup_Permutation_proper; [apply Permutation_middle | exact HA]).
  apply NoDup_cons in HA' as [Hni HA']; constructor; cbn.
  - eapply linked_same; [|exact HL]; intros jp Hjp; rewrite lookup_delete_ne; [reflexivity|]; intros <-; apply Hni, elem_of_app; left; exact Hjp.
  - exact HT.
  - exact HA'.
  - intros jp; destruct (decide (jp = job_p)) as [->|Hne].
    + rewrite lookup_delete_eq; split; [intros [x Hx]; discriminate | intros H; contradiction].
    + rewrite lookup_delete_ne by congruence; rewrite (HB jp), !elem_of_app, elem_of_cons; tauto.
Qed.

Lemma running_kept (w : jworld) (running : list positive) (qj : list job) (job_p jp : positive) :
  queue_of w (job_p :: running) qj -> jp ∈ running -> job_at (free_job job_p w) jp = job_at w jp.
Proof.
  intros (q & Q & _) Hjp; pose proof (queue_apart _ _ _ Q) as HA.
  assert (HA' : NoDup (job_p :: q.*1 ++ running)) by (eapply NoDup_Permutation_proper; [apply Permutation_middle | exact HA]).
  apply NoDup_cons in HA' as [Hni _]; unfold job_at; cbn; rewrite lookup_delete_ne; [reflexivity|].
  intros <-; apply Hni, elem_of_app; right; exact Hjp.
Qed.
