(* ===== verification/Promise.v ===== *)
(** * Promises: src/jjs-core/ecma/operations/ecma-promise-object.c

    These functions call functions of the program, getters, constructors and iterators, which
    may call back.  A native function that waits for such a call is a frame, and a native
    function is a function from states to states that runs to its next call or to its return
    to the frames [k]. *)
From Stdlib Require Import ZArith Lia Bool List.
From stdpp Require Import base gmap list.
From S2P Require Import Prelude JobQueue.
Import ListNotations.
#[local] Open Scope Z_scope.
#[local] Open Scope partial_scope.

(** ** Settling a promise *)

Definition promise_at (w : jworld) (p : positive) : option (Z * value * list item) := match objects w !! p with Some (PROMISE f r l) => Some (f, r, l) | _ => None end.
Definition flag_of (f mask : Z) : bool := negb (Z.land f mask =? 0).

Definition ecma_promise_set_state (f : Z) (is_fulfilled : bool) : option Z :=
  if flag_of f ECMA_PROMISE_IS_PENDING
  then Some (Z.lxor f (if is_fulfilled then Z.lor ECMA_PROMISE_IS_PENDING ECMA_PROMISE_IS_FULFILLED else ECMA_PROMISE_IS_PENDING)) else None.

(** The old result is undefined *)
Definition ecma_promise_set_result (old result : value) : option value := match old with UNDEFINED => Some result | _ => None end.

Fixpoint ecma_promise_trigger_reactions (p : positive) (buffer : list item) (v : value) (is_reject : bool) (w : jworld) : option jworld :=
  match buffer with
  | [] => Some w
  | TAGGED o first second third :: buffer =>
      if third then
        let? w := ecma_enqueue_promise_async_reaction_job p o v is_reject w in
        ecma_promise_trigger_reactions p buffer v is_reject w
      else
        let enqueue handler buffer := let? w := ecma_enqueue_promise_reaction_job p o handler v w in ecma_promise_trigger_reactions p buffer v is_reject w in
        match first, second with
        | true, true => match buffer with HANDLER a :: HANDLER b :: buffer => enqueue (if is_reject then b else a) buffer | _ => None end
        | true, false => match buffer with HANDLER a :: buffer => enqueue (if is_reject then FALSE else a) buffer | _ => None end
        | false, true => match buffer with HANDLER b :: buffer => enqueue (if is_reject then b else TRUE) buffer | _ => None end
        | false, false => enqueue (if is_reject then FALSE else TRUE) buffer
        end
  | HANDLER _ :: _ => None
  end.

(** ecma_new_collection in place of the old one *)
Definition clear_reactions (p : positive) (w : jworld) : option jworld := let? (f, r, _) := promise_at w p in Some (set_object p (PROMISE f r []) w).

Definition ecma_reject_promise (p : positive) (reason : value) (k : list frame) (w : jworld) : option state :=
  let? (f, r, reactions) := promise_at w p in
  let? f := ecma_promise_set_state f false in
  let? r := ecma_promise_set_result r reason in
  let? w := ecma_promise_trigger_reactions p reactions reason true (set_object p (PROMISE f r reactions) w) in
  match reactions with
  | [] => Some (mk_state (set_object p (PROMISE (Z.lor f ECMA_PROMISE_UNHANDLED_REJECT) r reactions) w) RUN (REJECT_UNHANDLED p :: k))
  | _ => let? w := clear_reactions p w in return_value UNDEFINED k w
  end.

(** ecma_fulfill_promise, after the property then *)
Definition fulfill_with (p : positive) (v : value) (k : list frame) (w : jworld) : option state :=
  let? (f, r, reactions) := promise_at w p in
  let? f := ecma_promise_set_state f true in
  let? r := ecma_promise_set_result r v in
  let? w := ecma_promise_trigger_reactions p reactions v false (set_object p (PROMISE f r reactions) w) in
  let? w := clear_reactions p w in
  return_value UNDEFINED k w.

Definition ecma_fulfill_promise (p : positive) (v : value) (k : list frame) (w : jworld) : option state :=
  let? (f, r, reactions) := promise_at w p in
  if negb (flag_of f ECMA_PROMISE_IS_PENDING) then None
  else if decide (OBJECT p = v) then let '(e, w) := create_object ORDINARY w in ecma_reject_promise p (OBJECT e) k w
  else match v with OBJECT _ => Some (mk_state w RUN (FULFILL p v :: k)) | _ => fulfill_with p v k w end.

Definition after_fulfill (p : positive) (v : value) (c : completion) (k : list frame) (w : jworld) : option state :=
  match c with
  | THROW e => ecma_reject_promise p e k w
  | NORMAL th =>
      if ecma_op_is_callable w th then let? w := ecma_enqueue_promise_resolve_thenable_job p v th w in return_value UNDEFINED k w
      else fulfill_with p v k w
  end.

Definition ecma_is_resolver_already_called (f : Z) : bool := flag_of f ECMA_PROMISE_ALREADY_RESOLVED.

Definition ecma_reject_promise_with_checks (p : positive) (reason : value) (k : list frame) (w : jworld) : option state :=
  let? (f, r, l) := promise_at w p in
  if ecma_is_resolver_already_called f then return_value UNDEFINED k w
  else ecma_reject_promise p reason k (set_object p (PROMISE (Z.lor f ECMA_PROMISE_ALREADY_RESOLVED) r l) w).

Definition ecma_fulfill_promise_with_checks (p : positive) (v : value) (k : list frame) (w : jworld) : option state :=
  let? (f, r, l) := promise_at w p in
  if ecma_is_resolver_already_called f then return_value UNDEFINED k w
  else ecma_fulfill_promise p v k (set_object p (PROMISE (Z.lor f ECMA_PROMISE_ALREADY_RESOLVED) r l) w).

Definition argument (args : list value) (i : nat) : value := match args !! i with Some v => v | None => UNDEFINED end.
Definition ecma_promise_reject_handler (p : positive) (args : list value) : list frame -> jworld -> option state := ecma_reject_promise_with_checks p (argument args 0).
Definition ecma_promise_resolve_handler (p : positive) (args : list value) : list frame -> jworld -> option state := ecma_fulfill_promise_with_checks p (argument args 0).

(** ** Calls *)

Definition ecma_op_get_capabilities_executor_cb (capability : positive) (args : list value) (k : list frame) (w : jworld) : option state :=
  match objects w !! capability with
  | Some (PROMISE_CAPABILITY promise resolve reject) =>
      match resolve, reject with
      | UNDEFINED, UNDEFINED => return_value UNDEFINED k (set_object capability (PROMISE_CAPABILITY promise (argument args 0) (argument args 1)) w)
      | _, _ => ecma_raise_type_error k w
      end
  | _ => None
  end.

(** The native handlers; the last argument of [call_finally] selects the thrower.
    ecma_promise_then_finally_cb and ecma_promise_catch_finally_cb assert that there is an argument. *)
Definition call_function (call_finally : value -> value -> value -> bool -> list frame -> jworld -> option state) (f : value) (args : list value) (k : list frame) (w : jworld) : option state :=
  match object_at w f with
  | Some (PROMISE_RESOLVE p) => ecma_promise_resolve_handler p args k w
  | Some (PROMISE_REJECT p) => ecma_promise_reject_handler p args k w
  | Some (PROMISE_CAPABILITY_EXECUTOR capability) => ecma_op_get_capabilities_executor_cb capability args k w
  | Some (PROMISE_THEN_FINALLY constructor on_finally) => match args with [] => None | arg :: _ => call_finally constructor on_finally arg false k w end
  | Some (PROMISE_CATCH_FINALLY constructor on_finally) => match args with [] => None | arg :: _ => call_finally constructor on_finally arg true k w end
  | Some (VALUE_THUNK v) => return_value v k w
  | Some (VALUE_THROWER v) => throw_value v k w
  | Some PROMISE_CONSTRUCTOR => ecma_raise_type_error k w
  | Some (FUNCTION _) => Some (mk_state w RUN k)
  | _ => None
  end.

(** on_finally is called without arguments, and so it calls no finally function itself *)
Definition ecma_promise_then_catch_finally_helper (constructor on_finally arg : value) (throws : bool) (k : list frame) (w : jworld) : option state :=
  if ecma_op_is_callable w on_finally then call_function (fun _ _ _ _ _ _ => None) on_finally [] (FINALLY_CALL constructor arg throws :: k) w else None.

Definition ecma_op_function_call : value -> list value -> list frame -> jworld -> option state := call_function ecma_promise_then_catch_finally_helper.

(** ecma_op_invoke_by_magic_id with the name then; only undefined and null have no object *)
Definition ecma_op_invoke_then (object : value) (args : list value) (k : list frame) (w : jworld) : option state :=
  match object with UNDEFINED | NULL => ecma_raise_type_error k w | _ => Some (mk_state w RUN (INVOKE_THEN args :: k)) end.

(** ecma_op_function_validated_call *)
Definition after_invoke_then (args : list value) (c : completion) (k : list frame) (w : jworld) : option state :=
  match c with THROW e => throw_value e k w | NORMAL func => if ecma_op_is_callable w func then ecma_op_function_call func args k w else ecma_raise_type_error k w end.

(** ** Creating promises *)

Definition ecma_promise_run_executor (p : positive) (executor : value) (k : list frame) (w : jworld) : option state :=
  let '(resolve_func_p, w) := create_object (PROMISE_RESOLVE p) w in
  let '(reject_func_p, w) := create_object (PROMISE_REJECT p) w in
  ecma_op_function_call executor [OBJECT resolve_func_p; OBJECT reject_func_p] k w.

(** Without an executor nothing is called *)
Definition ecma_op_create_promise_object (executor : option value) (k : list frame) (w : jworld) : option state :=
  let '(p, w) := create_object (PROMISE ECMA_PROMISE_IS_PENDING UNDEFINED []) w in
  match executor with
  | Some executor => if ecma_op_is_callable w executor then ecma_promise_run_executor p executor (CREATE_EXECUTOR p :: k) w else None
  | None => return_value (OBJECT p) k w
  end.

Definition after_executor (p : positive) (c : completion) (k : list frame) (w : jworld) : option state :=
  match c with NORMAL _ => return_value (OBJECT p) k w | THROW e => ecma_reject_promise_with_checks p e (CREATE_REJECT p :: k) w end.

(** The built-in Promise *)
Definition ECMA_BUILTIN_ID_PROMISE : positive := 1.

Definition ecma_promise_new_capability (constructor : value) (use : capability_use) (k : list frame) (w : jworld) : option state :=
  if negb (ecma_is_constructor w constructor) then ecma_raise_type_error k w
  else
    let '(capability, w) := create_object (PROMISE_CAPABILITY UNDEFINED UNDEFINED UNDEFINED) w in
    let '(executor, w) := create_object (PROMISE_CAPABILITY_EXECUTOR capability) w in
    if decide (constructor = OBJECT ECMA_BUILTIN_ID_PROMISE) then ecma_op_create_promise_object (Some (OBJECT executor)) (NEW_CAPABILITY capability use :: k) w
    else Some (mk_state w RUN (NEW_CAPABILITY capability use :: k)).

(** ** Reactions *)

(** Adds to the reactions of a pending promise, or enqueues the job *)
Definition ecma_promise_perform_then (p : positive) (on_fulfilled on_rejected : value) (capability : positive) (w : jworld) : option jworld :=
  let on_fulfilled := if ecma_op_is_callable w on_fulfilled then on_fulfilled else TRUE in
  let on_rejected := if ecma_op_is_callable w on_rejected then on_rejected else FALSE in
  let? (f, r, reactions) := promise_at w p in
  let w := record (REGISTERED p (ON_SETTLE capability on_fulfilled on_rejected)) w in
  if flag_of f ECMA_PROMISE_IS_PENDING then
    let first := negb (bool_decide (on_fulfilled = TRUE)) in
    let second := negb (bool_decide (on_rejected = FALSE)) in
    let items := TAGGED capability first second false :: (if first then [HANDLER on_fulfilled] else []) ++ (if second then [HANDLER on_rejected] else []) in
    Some (set_object p (PROMISE f r (reactions ++ items)) w)
  else if flag_of f ECMA_PROMISE_IS_FULFILLED then ecma_enqueue_promise_reaction_job p capability on_fulfilled r w
  else
    let? w := ecma_enqueue_promise_reaction_job p capability on_rejected r w in
    Some (set_object p (PROMISE (Z.land f (Z.lnot ECMA_PROMISE_UNHANDLED_REJECT)) r reactions) w).

Definition ecma_promise_async_then (p executable_object : positive) (w : jworld) : option jworld :=
  let? (f, r, reactions) := promise_at w p in
  let w := record (REGISTERED p (ON_AWAIT executable_object)) w in
  if flag_of f ECMA_PROMISE_IS_PENDING then Some (set_object p (PROMISE f r (reactions ++ [TAGGED executable_object false false true])) w)
  else
    let? w := ecma_enqueue_promise_async_reaction_job p executable_object r (negb (flag_of f ECMA_PROMISE_IS_FULFILLED)) w in
    Some (set_object p (PROMISE (Z.land f (Z.lnot ECMA_PROMISE_UNHANDLED_REJECT)) r reactions) w).

(** ** Capabilities *)

Definition capability_at (w : jworld) (o : positive) : option (value * value * value) := match objects w !! o with Some (PROMISE_CAPABILITY p a b) => Some (p, a, b) | _ => None end.

(** The rest of ecma_promise_new_capability, and what its callers do with the capability *)
Definition after_capability (capability : positive) (use : capability_use) (c : completion) (k : list frame) (w : jworld) : option state :=
  match c with
  | THROW e => throw_value e k w
  | NORMAL promise =>
      let? (_, resolve, reject) := capability_at w capability in
      if negb (ecma_op_is_callable w resolve) then ecma_raise_type_error k w
      else if negb (ecma_op_is_callable w reject) then ecma_raise_type_error k w
      else
        let w := set_object capability (PROMISE_CAPABILITY promise resolve reject) w in
        match use with
        | FOR_THEN p on_fulfilled on_rejected => let? w := ecma_promise_perform_then p on_fulfilled on_rejected capability w in return_value promise k w
        | FOR_RESOLVE v is_resolve => ecma_op_function_call (if is_resolve then resolve else reject) [v] (RESOLVE_CALL capability :: k) w
        | FOR_RESOLVERS => let '(obj, w) := create_object ORDINARY w in Some (mk_state w RUN (PUT_RESOLVERS obj 2 :: k))
        end
  end.

Definition ecma_promise_with_resolvers (this_arg : value) : list frame -> jworld -> option state := ecma_promise_new_capability this_arg FOR_RESOLVERS.

(** What happens to a property that is set is ignored *)
Definition after_put (obj : positive) (count : nat) (k : list frame) (w : jworld) : option state :=
  match count with O => return_value (OBJECT obj) k w | S count => Some (mk_state w RUN (PUT_RESOLVERS obj count :: k)) end.

Definition ecma_promise_reject_or_resolve (this_arg v : value) (is_resolve : bool) (k : list frame) (w : jworld) : option state :=
  match this_arg with
  | OBJECT _ =>
      if is_resolve && match v with OBJECT o => ecma_is_promise w o | _ => false end then Some (mk_state w RUN (RESOLVE_CONSTRUCTOR this_arg v :: k))
      else ecma_promise_new_capability this_arg (FOR_RESOLVE v is_resolve) k w
  | _ => ecma_raise_type_error k w
  end.

Definition after_constructor (this_arg v : value) (c : completion) (k : list frame) (w : jworld) : option state :=
  match c with
  | THROW e => throw_value e k w
  | NORMAL constructor => if decide (constructor = this_arg) then return_value v k w else ecma_promise_new_capability this_arg (FOR_RESOLVE v true) k w
  end.

Definition after_resolve_call (capability : positive) (c : completion) (k : list frame) (w : jworld) : option state :=
  match c with THROW e => throw_value e k w | NORMAL _ => let? (promise, _, _) := capability_at w capability in return_value promise k w end.

(** ** then and finally *)

Definition ecma_promise_then (promise on_fulfilled on_rejected : value) (k : list frame) (w : jworld) : option state :=
  match promise with
  | OBJECT p => if ecma_is_promise w p then Some (mk_state w RUN (SPECIES_CONSTRUCTOR (SPECIES_THEN p on_fulfilled on_rejected) :: k)) else ecma_raise_type_error k w
  | _ => ecma_raise_type_error k w
  end.

Definition ecma_promise_finally (promise on_finally : value) (k : list frame) (w : jworld) : option state :=
  match promise with
  | OBJECT p => Some (mk_state w RUN (SPECIES_CONSTRUCTOR (SPECIES_FINALLY p on_finally) :: k))
  | _ => ecma_raise_type_error k w
  end.

(** ecma_promise_then and ecma_promise_finally, after the species *)
Definition after_species (use : species_use) (species : value) (k : list frame) (w : jworld) : option state :=
  match use with
  | SPECIES_THEN p on_fulfilled on_rejected => ecma_promise_new_capability species (FOR_THEN p on_fulfilled on_rejected) k w
  | SPECIES_FINALLY p on_finally =>
      if negb (ecma_is_constructor w species) then None
      else if negb (ecma_op_is_callable w on_finally) then ecma_op_invoke_then (OBJECT p) [on_finally; on_finally] k w
      else
        let '(then_finally, w) := create_object (PROMISE_THEN_FINALLY species on_finally) w in
        let '(catch_finally, w) := create_object (PROMISE_CATCH_FINALLY species on_finally) w in
        ecma_op_invoke_then (OBJECT p) [OBJECT then_finally; OBJECT catch_finally] k w
  end.

(** ecma_op_species_constructor *)
Definition after_species_constructor (use : species_use) (c : completion) (k : list frame) (w : jworld) : option state :=
  match c with
  | THROW e => throw_value e k w
  | NORMAL UNDEFINED => after_species use (OBJECT ECMA_BUILTIN_ID_PROMISE) k w
  | NORMAL (OBJECT _) => Some (mk_state w RUN (SPECIES_SYMBOL use :: k))
  | NORMAL _ => ecma_raise_type_error k w
  end.

Definition after_species_symbol (use : species_use) (c : completion) (k : list frame) (w : jworld) : option state :=
  match c with
  | THROW e => throw_value e k w
  | NORMAL (UNDEFINED | NULL) => after_species use (OBJECT ECMA_BUILTIN_ID_PROMISE) k w
  | NORMAL species => if ecma_is_constructor w species then after_species use species k w else ecma_raise_type_error k w
  end.

(** ecma_promise_then_catch_finally_helper, after on_finally and with the promise of its result *)
Definition after_on_finally (constructor arg : value) (throws : bool) (c : completion) (k : list frame) (w : jworld) : option state :=
  match c with
  | THROW e => throw_value e k w
  | NORMAL result => if ecma_is_constructor w constructor then ecma_promise_reject_or_resolve constructor result true (FINALLY_PROMISE arg throws :: k) w else None
  end.

Definition after_finally_promise (arg : value) (throws : bool) (c : completion) (k : list frame) (w : jworld) : option state :=
  match c with
  | THROW e => throw_value e k w
  | NORMAL promise => let '(thunk, w) := create_object (if throws then VALUE_THROWER arg else VALUE_THUNK arg) w in ecma_op_invoke_then promise [OBJECT thunk] k w
  end.
