(* ===== verification/JobRun.v ===== *)
(** * Running jobs, and the runs of the engine

    The processing functions of ecma-jobqueue.c, and the steps of a state: a call returns to
    the topmost native function, or the program, the embedder or the interpreter does
    something.  What these do is an [action]; it is theirs to choose, within [admissible]. *)
From Stdlib Require Import ZArith Lia Bool List.
From stdpp Require Import base gmap list.
From S2P Require Import Prelude JobQueue Promise.
Import ListNotations.
#[local] Open Scope Z_scope.
#[local] Open Scope partial_scope.

(** ** ecma-jobqueue.c *)

(** The function of the capability of a reaction job *)
Definition settle_capability (capability : positive) (reject_it : bool) (v : value) (k : list frame) (w : jworld) : option state :=
  let? (_, resolve, reject) := capability_at w capability in ecma_op_function_call (if reject_it then reject else resolve) [v] k w.

Definition ecma_process_promise_reaction_job (job_p capability : positive) (handler arg : value) (k : list frame) (w : jworld) : option state :=
  match handler with
  | TRUE => settle_capability capability false arg (REACTION_SETTLE job_p :: k) w
  | FALSE => settle_capability capability true arg (REACTION_SETTLE job_p :: k) w
  | _ => if ecma_op_is_callable w handler then ecma_op_function_call handler [arg] (REACTION_HANDLER job_p :: k) w else None
  end.

Definition after_handler (job_p : positive) (c : completion) (k : list frame) (w : jworld) : option state :=
  match job_at w job_p with
  | Some (ECMA_JOB_PROMISE_REACTION capability _ _) =>
      match c with NORMAL v => settle_capability capability false v (REACTION_SETTLE job_p :: k) w | THROW e => settle_capability capability true e (REACTION_SETTLE job_p :: k) w end
  | _ => None
  end.

Definition ecma_process_promise_resolve_thenable_job (job_p p : positive) (thenable then_function : value) (k : list frame) (w : jworld) : option state :=
  let? (f, r, l) := promise_at w p in
  ecma_promise_run_executor p then_function (THENABLE_THEN job_p :: k) (set_object p (PROMISE (Z.land f (Z.lnot ECMA_PROMISE_ALREADY_RESOLVED)) r l) w).

Definition after_thenable (job_p : positive) (c : completion) (k : list frame) (w : jworld) : option state :=
  match c with
  | NORMAL v => return_value v k (free_job job_p w)
  | THROW e => match job_at w job_p with Some (ECMA_JOB_PROMISE_THENABLE p _ _) => ecma_reject_promise_with_checks p e (THENABLE_REJECT job_p :: k) w | _ => None end
  end.

Definition ecma_process_microtask_job (job_p : positive) (callback : value) (k : list frame) (w : jworld) : option state := ecma_op_function_call callback [] (JOB_DONE job_p :: k) w.

(** The switch on the type of the job; suspended functions are run by the interpreter *)
Definition process_job (job_p : positive) (j : job) (k : list frame) (w : jworld) : option state :=
  match j with
  | ECMA_JOB_PROMISE_REACTION capability handler arg => ecma_process_promise_reaction_job job_p capability handler arg k w
  | ECMA_JOB_PROMISE_ASYNC_REACTION _ _ _ | ECMA_JOB_PROMISE_ASYNC_GENERATOR _ => Some (mk_state w RUN (JOB_DONE job_p :: k))
  | ECMA_JOB_PROMISE_THENABLE p thenable then_function => ecma_process_promise_resolve_thenable_job job_p p thenable then_function k w
  | ECMA_JOB_MICROTASK callback => ecma_process_microtask_job job_p callback k w
  end.

(** One turn of the loop, with the result of the last job *)
Definition ecma_process_all_enqueued_jobs (c : completion) (k : list frame) (w : jworld) : option state :=
  match c with
  | THROW e => throw_value e k w
  | NORMAL _ =>
      match job_queue_head_p w with
      | None => return_value UNDEFINED k w
      | Some job_p => let? (j, next) := jobs w !! job_p in process_job job_p j (PROCESS_JOBS :: k) (record (STARTED j) (set_queue (jobs w) next (job_queue_tail_p w) w))
      end
  end.

(** ** Steps *)

(** A call returns to a native function, or to the program *)
Definition resume (f : frame) (c : completion) (k : list frame) (w : jworld) : option state :=
  match f with
  | PROGRAM => Some (mk_state w RUN k)
  | FULFILL p v => after_fulfill p v c k w
  | REJECT_UNHANDLED p => let? w := clear_reactions p w in return_value UNDEFINED k w
  | CREATE_EXECUTOR p => after_executor p c k w
  | CREATE_REJECT p => return_value (OBJECT p) k w
  | NEW_CAPABILITY capability use => after_capability capability use c k w
  | SPECIES_CONSTRUCTOR use => after_species_constructor use c k w
  | SPECIES_SYMBOL use => after_species_symbol use c k w
  | RESOLVE_CONSTRUCTOR this_arg v => after_constructor this_arg v c k w
  | RESOLVE_CALL capability => after_resolve_call capability c k w
  | PUT_RESOLVERS obj count => after_put obj count k w
  | INVOKE_THEN args => after_invoke_then args c k w
  | FINALLY_CALL constructor arg throws => after_on_finally constructor arg throws c k w
  | FINALLY_PROMISE arg throws => after_finally_promise arg throws c k w
  | REACTION_HANDLER job_p => after_handler job_p c k w
  | REACTION_SETTLE job_p | JOB_DONE job_p => Some (mk_state (free_job job_p w) (RETURN c) k)
  | THENABLE_THEN job_p => after_thenable job_p c k w
  | THENABLE_REJECT job_p => return_value UNDEFINED k (free_job job_p w)
  | PROCESS_JOBS => ecma_process_all_enqueued_jobs c k w
  end.

Inductive action :=
| DO_RETURN (c : completion) (** the function, getter or callback that runs ends *)
| DO_CALL (f : value) (args : list value)
| DO_CREATE (ob : object)
| DO_NEW_PROMISE (executor : value) (** new Promise *)
| DO_THEN (promise on_fulfilled on_rejected : value)
| DO_FINALLY (promise on_finally : value)
| DO_RESOLVE (this_arg v : value) (is_resolve : bool) (** Promise.resolve and Promise.reject *)
| DO_WITH_RESOLVERS (this_arg : value)
| DO_QUEUE_MICROTASK (callback : value) (** queueMicrotask *)
| DO_RUN_JOBS (** jjs_run_jobs *)
| DO_API_PROMISE (** jjs_promise *)
| DO_API_SETTLE (promise : positive) (v : value) (is_resolve : bool) (** jjs_promise_resolve and jjs_promise_reject *)
| DO_VM_PROMISE (** a promise for an asynchronous function, generator or import *)
| DO_VM_SETTLE (promise : positive) (v : value) (is_resolve : bool) (** its end: ecma_fulfill_promise and ecma_reject_promise *)
| DO_VM_AWAIT (promise executable_object : positive)
| DO_VM_GENERATOR (executable_object : positive).

(** [k] is what the program runs in; the result of a native function returns to the program *)
Definition act (a : action) (k : list frame) (w : jworld) : option state :=
  match a with
  | DO_RETURN c => Some (mk_state w (RETURN c) k)
  | DO_CALL f args => ecma_op_function_call f args (PROGRAM :: k) w
  | DO_CREATE ob => Some (mk_state (create_object ob w).2 RUN k)
  | DO_NEW_PROMISE executor =>
      if ecma_op_is_callable w executor then ecma_op_create_promise_object (Some executor) (PROGRAM :: k) w else ecma_raise_type_error (PROGRAM :: k) w
  | DO_THEN promise on_fulfilled on_rejected => ecma_promise_then promise on_fulfilled on_rejected (PROGRAM :: k) w
  | DO_FINALLY promise on_finally => ecma_promise_finally promise on_finally (PROGRAM :: k) w
  | DO_RESOLVE this_arg v is_resolve => ecma_promise_reject_or_resolve this_arg v is_resolve (PROGRAM :: k) w
  | DO_WITH_RESOLVERS this_arg => ecma_promise_with_resolvers this_arg (PROGRAM :: k) w
  | DO_QUEUE_MICROTASK callback =>
      if ecma_op_is_callable w callback then let? w := ecma_enqueue_microtask_job callback w in Some (mk_state w RUN k) else ecma_raise_type_error (PROGRAM :: k) w
  | DO_RUN_JOBS => ecma_process_all_enqueued_jobs (NORMAL UNDEFINED) (PROGRAM :: k) w
  | DO_API_PROMISE => ecma_op_create_promise_object None (PROGRAM :: k) w
  | DO_API_SETTLE p v is_resolve => (if is_resolve then ecma_fulfill_promise_with_checks else ecma_reject_promise_with_checks) p v (PROGRAM :: k) w
  | DO_VM_PROMISE => let '(p, w) := create_object (PROMISE ECMA_PROMISE_IS_PENDING UNDEFINED []) w in Some (mk_state (set_vm p true w) RUN k)
  | DO_VM_SETTLE p v is_resolve => (if is_resolve then ecma_fulfill_promise else ecma_reject_promise) p v (PROGRAM :: k) (set_vm p false w)
  | DO_VM_AWAIT p executable_object => let? w := ecma_promise_async_then p executable_object w in Some (mk_state w RUN k)
  | DO_VM_GENERATOR executable_object => let? w := ecma_enqueue_promise_async_generator_job executable_object w in Some (mk_state w RUN k)
  end.

(** No function of Promise.prototype.finally, which assert that they have an argument *)
Definition callable_without_argument (w : jworld) (v : value) : bool :=
  match v with OBJECT o => match objects w !! o with Some (PROMISE_THEN_FINALLY _ _ | PROMISE_CATCH_FINALLY _ _) | None => false | _ => true end | _ => true end.

(** The program only calls what is callable, and the embedder only settles promises.  Two things
    are excluded because the engine fails there: calling one of the functions that
    Promise.prototype.finally makes without an argument, and settling a promise of the
    interpreter by the embedder. *)
Definition admissible (a : action) (k : list frame) (w : jworld) : bool :=
  match a with
  | DO_RETURN _ => match k with [] => false | _ => true end
  | DO_CALL f args => ecma_op_is_callable w f && match args with [] => callable_without_argument w f | _ => true end
  | DO_CREATE ob => match ob with FUNCTION _ | EXECUTABLE | ORDINARY => true | _ => false end
  | DO_FINALLY _ callback | DO_QUEUE_MICROTASK callback => callable_without_argument w callback
  | DO_API_SETTLE p _ _ => ecma_is_promise w p && match vm_promises w !! p with Some _ => false | None => true end
  | DO_VM_SETTLE p _ _ => match vm_promises w !! p with Some open => open | None => false end
  | DO_VM_AWAIT p _ => ecma_is_promise w p
  | _ => true
  end.

(** One step; [a] is used when the program runs *)
Definition step_with (a : action) (s : state) : option state :=
  match ctl s with
  | RETURN c => match frames s with f :: k => resume f c k (world s) | [] => None end
  | RUN => act a (frames s) (world s)
  end.

Definition may_step (a : action) (s : state) : bool := match ctl s with RETURN _ => true | RUN => admissible a (frames s) (world s) end.

Inductive step (s s' : state) : Prop :=
| step_action (a : action) (Hmay : may_step a s = true) (Hs : step_with a s = Some s').

Definition boot : state := mk_state (mk_jworld {[ECMA_BUILTIN_ID_PROMISE := PROMISE_CONSTRUCTOR]} ∅ None None ∅ []) RUN [].

Definition reachable (s : state) : Prop := rtc step boot s.

(** Runs the actions in order, each when the program runs again *)
Fixpoint run_actions (fuel : nat) (acts : list action) (s : state) : option state :=
  match fuel with
  | O => None
  | S fuel =>
      match ctl s, acts with
      | RETURN _, _ => let? s := step_with (DO_RETURN (NORMAL UNDEFINED)) s in run_actions fuel acts s
      | RUN, [] => Some s
      | RUN, a :: acts => if may_step a s then let? s := step_with a s in run_actions fuel acts s else None
      end
  end.
