(* ===== verification/PromiseInv.v ===== *)
(** * The invariant of promises and jobs

    A promise may be settled later by one thing at most: a job for a thenable, or
    ecma_fulfill_promise that waits for the property then ([settling]).  Otherwise
    ECMA_PROMISE_ALREADY_RESOLVED guards it, unless no resolving function exists and the
    interpreter has settled it ([usable]). *)
From Stdlib Require Import ZArith Lia Bool List.
From stdpp Require Import base gmap list.
From S2P Require Import Prelude JobQueue Promise JobRun.
Import ListNotations.
#[local] Open Scope Z_scope.
#[local] Open Scope partial_scope.

(** ** The invariant *)

Definition pending (f : Z) : bool := flag_of f ECMA_PROMISE_IS_PENDING.
Definition fulfilled (f : Z) : bool := flag_of f ECMA_PROMISE_IS_FULFILLED.
Definition already_resolved (f : Z) : bool := flag_of f ECMA_PROMISE_ALREADY_RESOLVED.
Definition flags_ok (f : Z) : Prop := f ∈ [1; 5; 0; 2; 4; 6; 8; 12].

Definition is_promise (w : jworld) (p : positive) : Prop := ecma_is_promise w p = true.
Definition callable (w : jworld) (v : value) : Prop := ecma_op_is_callable w v = true.
Definition is_capability (w : jworld) (o : positive) : Prop := is_Some (capability_at w o).
Definition complete (w : jworld) (o : positive) : Prop := exists p a b, capability_at w o = Some (p, a, b) /\ callable w a /\ callable w b.
Definition has_resolvers (w : jworld) (p : positive) : Prop := exists o, objects w !! o = Some (PROMISE_RESOLVE p) \/ objects w !! o = Some (PROMISE_REJECT p).
Definition usable (w : jworld) (p : positive) : Prop := has_resolvers w p \/ vm_promises w !! p = None.

(** The reactions of a list of items *)
Fixpoint decode (l : list item) : option (list reaction) :=
  match l with
  | [] => Some []
  | TAGGED o _ _ true :: l => let? rs := decode l in Some (ON_AWAIT o :: rs)
  | TAGGED c true true false :: HANDLER a :: HANDLER b :: l => let? rs := decode l in Some (ON_SETTLE c a b :: rs)
  | TAGGED c true false false :: HANDLER a :: l => let? rs := decode l in Some (ON_SETTLE c a FALSE :: rs)
  | TAGGED c false true false :: HANDLER b :: l => let? rs := decode l in Some (ON_SETTLE c TRUE b :: rs)
  | TAGGED c false false false :: l => let? rs := decode l in Some (ON_SETTLE c TRUE FALSE :: rs)
  | _ => None
  end.

Definition reaction_ok (w : jworld) (r : reaction) : Prop :=
  match r with ON_SETTLE c a b => complete w c /\ (a = TRUE \/ callable w a) /\ (b = FALSE \/ callable w b) | ON_AWAIT _ => True end.

(** The job of a reaction when the promise is settled *)
Definition reaction_job (is_reject : bool) (v : value) (r : reaction) : job :=
  match r with
  | ON_SETTLE c a b => ECMA_JOB_PROMISE_REACTION c (if is_reject then b else a) v
  | ON_AWAIT e => ECMA_JOB_PROMISE_ASYNC_REACTION is_reject e v
  end.

Definition job_ok (w : jworld) (j : job) : Prop :=
  match j with
  | ECMA_JOB_PROMISE_REACTION c h _ => complete w c /\ (h = TRUE \/ h = FALSE \/ callable w h)
  | ECMA_JOB_PROMISE_ASYNC_REACTION _ _ _ | ECMA_JOB_PROMISE_ASYNC_GENERATOR _ => True
  | ECMA_JOB_PROMISE_THENABLE p _ t => is_promise w p /\ callable w t
  | ECMA_JOB_MICROTASK c => callable w c /\ callable_without_argument w c = true
  end.

Definition object_ok (w : jworld) (ob : object) : Prop :=
  match ob with
  | PROMISE_RESOLVE p | PROMISE_REJECT p => is_promise w p /\ vm_promises w !! p <> Some true
  | PROMISE_CAPABILITY_EXECUTOR c => is_capability w c
  | PROMISE_THEN_FINALLY c f | PROMISE_CATCH_FINALLY c f => ecma_is_constructor w c = true /\ callable w f /\ callable_without_argument w f = true
  | _ => True
  end.

Definition thenables (qj : list job) : list positive := omap (fun j => match j with ECMA_JOB_PROMISE_THENABLE p _ _ => Some p | _ => None end) qj.
Definition fulfilling (k : list frame) : list positive := omap (fun f => match f with FULFILL p _ => Some p | _ => None end) k.
Definition running_jobs (k : list frame) : list positive :=
  omap (fun f => match f with REACTION_HANDLER jp | REACTION_SETTLE jp | THENABLE_THEN jp | THENABLE_REJECT jp | JOB_DONE jp => Some jp | _ => None end) k.

(** [settling] are the promises that something settles later *)
Record promise_ok (w : jworld) (settling : list positive) (p : positive) (f : Z) (r : value) (l : list item) : Prop := {
  po_flags : flags_ok f;
  po_pending : pending f = true -> r = UNDEFINED /\ exists rs, decode l = Some rs /\ Forall (reaction_ok w) rs /\ registered p (history w) = rs /\ scheduled p (history w) = [];
  po_settled : pending f = false -> l = [] /\ p ∉ settling /\ scheduled p (history w) = map (reaction_job (negb (fulfilled f)) r) (registered p (history w));
  po_guarded : already_resolved f = false -> usable w p -> pending f = true /\ p ∉ settling;
  po_vm : vm_promises w !! p = Some true -> pending f = true /\ already_resolved f = false /\ p ∉ settling
}.

Record world_ok (w : jworld) (waiting running : list positive) (qj : list job) : Prop := {
  wo_constructor : objects w !! ECMA_BUILTIN_ID_PROMISE = Some PROMISE_CONSTRUCTOR;
  wo_queue : queue_of w running qj;
  wo_history : enqueued (history w) = started (history w) ++ qj;
  wo_jobs : Forall (job_ok w) qj;
  wo_objects : forall o ob, objects w !! o = Some ob -> object_ok w ob;
  wo_promises : forall p f r l, promise_at w p = Some (f, r, l) -> promise_ok w (thenables qj ++ waiting) p f r l;
  wo_settling : NoDup (thenables qj ++ waiting);
  wo_waiting : forall p, p ∈ waiting -> is_promise w p;
  wo_vm : forall p b, vm_promises w !! p = Some b -> is_promise w p;
  wo_events : forall p, (registered p (history w) <> [] \/ scheduled p (history w) <> []) -> is_promise w p
}.

(** ** What the future keeps *)

Definition object_le (ob ob' : object) : Prop :=
  match ob with
  | PROMISE f r _ => exists f' r' l', ob' = PROMISE f' r' l' /\ (pending f = false -> pending f' = false /\ fulfilled f' = fulfilled f /\ r' = r)
  | PROMISE_CAPABILITY _ a b => exists p' a' b', ob' = PROMISE_CAPABILITY p' a' b' /\ (a <> UNDEFINED \/ b <> UNDEFINED -> a' = a /\ b' = b)
  | _ => ob' = ob
  end.

Record extends (running : list positive) (w w' : jworld) : Prop := {
  ext_objects : forall o ob, objects w !! o = Some ob -> exists ob', objects w' !! o = Some ob' /\ object_le ob ob';
  ext_jobs : forall jp, jp ∈ running -> job_at w' jp = job_at w jp;
  ext_history : exists e, history w' = history w ++ e;
  ext_closed : forall p, vm_promises w !! p = Some false -> vm_promises w' !! p = Some false
}.

Lemma object_le_refl (ob : object) : object_le ob ob.
Proof. destruct ob; cbn; eauto 10. Qed.

Lemma object_le_trans (a b c : object) : object_le a b -> object_le b c -> object_le a c.
Proof.
  destruct a; cbn; intros H1 H2; subst; auto.
  - destruct H1 as (f' & r' & l' & -> & H1), H2 as (f2 & r2 & l2 & -> & H2); exists f2, r2, l2; split; [reflexivity|].
    intros H; destruct (H1 H) as (A & B & C); destruct (H2 A) as (D & E & F); split; [exact D|]; split; congruence.
  - destruct H1 as (p' & a' & b' & -> & H1), H2 as (p2 & a2 & b2 & -> & H2); exists p2, a2, b2; split; [reflexivity|].
    intros H; destruct (H1 H) as (-> & ->); auto.
Qed.

Lemma extends_refl (running : list positive) (w : jworld) : extends running w w.
Proof. constructor; [intros o ob H; exists ob; split; [exact H | apply object_le_refl] | auto | exists []; rewrite app_nil_r; reflexivity | auto]. Qed.

Lemma extends_trans (running : list positive) (w w1 w2 : jworld) : extends running w w1 -> extends running w1 w2 -> extends running w w2.
Proof.
  intros A B; constructor.
  - intros o ob H; apply (ext_objects _ _ _ A) in H as (ob1 & H & L1); apply (ext_objects _ _ _ B) in H as (ob2 & H & L2); exists ob2; split; [exact H | eapply object_le_trans; eauto].
  - intros jp H; rewrite (ext_jobs _ _ _ B jp H); apply (ext_jobs _ _ _ A jp H).
  - destruct (ext_history _ _ _ A) as [e1 E1], (ext_history _ _ _ B) as [e2 E2]; exists (e1 ++ e2); rewrite E2, E1, app_assoc; reflexivity.
  - intros p H; apply (ext_closed _ _ _ B), (ext_closed _ _ _ A), H.
Qed.

Lemma extends_fewer (r1 r2 : list positive) (w w' : jworld) : (forall jp, jp ∈ r2 -> jp ∈ r1) -> extends r1 w w' -> extends r2 w w'.
Proof. intros Hs A; constructor; [apply A | intros jp H; apply (ext_jobs _ _ _ A), Hs, H | apply A | apply A]. Qed.

Section Keeping.
  Context (running : list positive) (w w' : jworld) (E : extends running w w').

Lemma is_promise_kept (p : positive) : is_promise w p -> is_promise w' p.
  Proof.
    unfold is_promise, ecma_is_promise; destruct (objects w !! p) as [ob|] eqn:Ho; [|discriminate]; destruct (ext_objects _ _ _ E p ob Ho) as (ob' & Ho' & L).
    destruct ob; try discriminate; intros _; destruct L as (f' & r' & l' & -> & _); rewrite Ho'; reflexivity.
  Qed.

Lemma object_at_kept (v : value) (ob : object) : object_at w v = Some ob -> exists ob', object_at w' v = Some ob' /\ object_le ob ob'.
  Proof. destruct v; cbn; try discriminate; apply (ext_objects _ _ _ E). Qed.

Lemma callable_kept (v : value) : callable w v -> callable w' v.
  Proof.
    unfold callable, ecma_op_is_callable; destruct (object_at w v) as [ob|] eqn:Ho; [|discriminate]; destruct (object_at_kept v ob Ho) as (ob' & Ho' & L); rewrite Ho'.
    destruct ob; cbn in L; subst; try discriminate; auto.
  Qed.

Lemma is_constructor_kept (v : value) : ecma_is_constructor w v = true -> ecma_is_constructor w' v = true.
  Proof.
    unfold ecma_is_constructor; destruct (object_at w v) as [ob|] eqn:Ho; [|discriminate]; destruct (object_at_kept v ob Ho) as (ob' & Ho' & L); rewrite Ho'.
    destruct ob; cbn in L; subst; try discriminate; auto.
  Qed.

Lemma without_argument_kept (v : value) : callable_without_argument w v = true -> callable_without_argument w' v = true.
  Proof.
    destruct v; cbn; auto; destruct (objects w !! o) as [ob|] eqn:Ho; [|discriminate]; destruct (ext_objects _ _ _ E o ob Ho) as (ob' & Ho' & L); rewrite Ho'.
    destruct ob; cbn in L; subst; try discriminate; auto; [destruct L as (? & ? & ? & -> & _) | destruct L as (? & ? & ? & -> & _)]; reflexivity.
  Qed.

Lemma is_capability_kept (o : positive) : is_capability w o -> is_capability w' o.
  Proof.
    unfold is_capability, capability_at; destruct (objects w !! o) as [ob|] eqn:Ho; [|intros [x Hx]; discriminate]; destruct (ext_objects _ _ _ E o ob Ho) as (ob' & Ho' & L); rewrite Ho'.
    destruct ob; try (intros [x Hx]; discriminate); destruct L as (? & ? & ? & -> & _); eauto.
  Qed.

Lemma callable_defined (v : value) : callable w v -> v <> UNDEFINED.
  Proof. intros H ->; discriminate. Qed.

Lemma complete_kept (o : positive) : complete w o -> complete w' o.
  Proof.
    unfold complete, capability_at; intros (p & a & b & H & Ha & Hb); destruct (objects w !! o) as [ob|] eqn:Ho; [|discriminate]; destruct (ext_objects _ _ _ E o ob Ho) as (ob' & Ho' & L); rewrite Ho'.
    destruct ob; try discriminate; injection H as -> -> ->; destruct L as (p' & a' & b' & -> & L); destruct L as (-> & ->); [left; apply callable_defined; exact Ha|].
    exists p', a, b; split; [reflexivity|]; split; apply callable_kept; assumption.
  Qed.

Lemma reaction_kept (r : reaction) : reaction_ok w r -> reaction_ok w' r.
  Proof. destruct r; cbn; [|auto]; intros (A & B & C); split; [apply complete_kept, A|]; split; [destruct B as [B|B]; [left; exact B | right; apply callable_kept, B] | destruct C as [C|C]; [left; exact C | right; apply callable_kept, C]]. Qed.

Lemma job_kept (j : job) : job_ok w j -> job_ok w' j.
  Proof.
    destruct j; cbn; auto.
    - intros (A & B); split; [apply complete_kept, A|]; destruct B as [B|[B|B]]; auto; right; right; apply callable_kept, B.
    - intros (A & B); split; [apply is_promise_kept, A | apply callable_kept, B].
    - intros (A & B); split; [apply callable_kept, A | apply without_argument_kept, B].
  Qed.

Lemma has_resolvers_kept (p : positive) : has_resolvers w p -> has_resolvers w' p.
  Proof. intros (o & [H|H]); exists o; destruct (ext_objects _ _ _ E o _ H) as (ob' & H' & L); cbn in L; subst; auto. Qed.
End Keeping.

(** ** One change of the world *)

Lemma registered_app (p : positive) (h e : list event) : registered p (h ++ e) = registered p h ++ registered p e.
Proof. apply omap_events_app. Qed.
Lemma scheduled_app (p : positive) (h e : list event) : scheduled p (h ++ e) = scheduled p h ++ scheduled p e.
Proof. apply omap_events_app. Qed.
Lemma enqueued_app (h e : list event) : enqueued (h ++ e) = enqueued h ++ enqueued e.
Proof. apply omap_events_app. Qed.
Lemma started_app (h e : list event) : started (h ++ e) = started h ++ started e.
Proof. apply omap_events_app. Qed.

Lemma enqueued_map (source : option positive) (js : list job) : enqueued (ENQUEUED source <$> js) = js.
Proof. induction js as [|j js IH]; [reflexivity|]; cbn; f_equal; exact IH. Qed.
Lemma started_map (source : option positive) (js : list job) : started (ENQUEUED source <$> js) = [].
Proof. induction js as [|j js IH]; [reflexivity|]; exact IH. Qed.
Lemma registered_map (p : positive) (source : option positive) (js : list job) : registered p (ENQUEUED source <$> js) = [].
Proof. induction js as [|j js IH]; [reflexivity|]; exact IH. Qed.
Lemma scheduled_map_other (p : positive) (source : option positive) (js : list job) : source <> Some p -> scheduled p (ENQUEUED source <$> js) = [].
Proof. intros H; induction js as [|j js IH]; [reflexivity|]; destruct source as [q|]; [|exact IH]; cbn; rewrite decide_False by congruence; exact IH. Qed.
Lemma scheduled_map_same (p : positive) (js : list job) : scheduled p (ENQUEUED (Some p) <$> js) = js.
Proof. induction js as [|j js IH]; [reflexivity|]; cbn; rewrite decide_True by reflexivity; f_equal; exact IH. Qed.

Lemma promise_at_is_promise (w : jworld) (p : positive) (x : Z * value * list item) : promise_at w p = Some x -> is_promise w p.
Proof. unfold promise_at, is_promise, ecma_is_promise; destruct (objects w !! p) as [[]|]; congruence. Qed.

Lemma is_promise_at (w : jworld) (p : positive) : is_promise w p -> exists f r l, promise_at w p = Some (f, r, l) /\ objects w !! p = Some (PROMISE f r l).
Proof. unfold promise_at, is_promise, ecma_is_promise; destruct (objects w !! p) as [[]|]; try discriminate; eauto. Qed.

Lemma promise_at_object (w : jworld) (p : positive) (f : Z) (r : value) (l : list item) : promise_at w p = Some (f, r, l) <-> objects w !! p = Some (PROMISE f r l).
Proof. unfold promise_at; destruct (objects w !! p) as [[]|]; split; intros H; try discriminate; congruence. Qed.

(** Nothing that a promise depends on changed *)
Record untouched (w w' : jworld) (settling settling' : list positive) (p : positive) : Prop := {
  un_registered : registered p (history w') = registered p (history w);
  un_scheduled : scheduled p (history w') = scheduled p (history w);
  un_settling : p ∈ settling' -> p ∈ settling;
  un_resolvers : has_resolvers w' p -> has_resolvers w p;
  un_vm : vm_promises w' !! p = vm_promises w !! p
}.

Lemma promise_untouched (w w' : jworld) (settling settling' : list positive) (p : positive) (f : Z) (r : value) (l : list item) :
  extends [] w w' -> untouched w w' settling settling' p -> promise_ok w settling p f r l -> promise_ok w' settling' p f r l.
Proof.
  intros E [U1 U2 U3 U4 U5] [P1 P2 P3 P4 P5]; constructor.
  - exact P1.
  - intros H; destruct (P2 H) as (A & rs & B & C & D & F); split; [exact A|]; exists rs; split; [exact B|]; split; [|split; congruence].
    eapply Forall_impl; [exact C|]; intros x; apply (reaction_kept _ _ _ E).
  - intros H; destruct (P3 H) as (A & B & C); split; [exact A|]; split; [intros K; apply B, U3, K|]; congruence.
  - intros H1 H2; destruct (P4 H1) as (A & B); [destruct H2 as [H2|H2]; [left; auto | right; congruence]|]; split; [exact A | intros K; apply B, U3, K].
  - intros H; rewrite U5 in H; destruct (P5 H) as (A & B & C); split; [exact A|]; split; [exact B | intros K; apply C, U3, K].
Qed.

(** What holds of the promises and the history after a change *)
Record world_change (w w' : jworld) (waiting running : list positive) (qj : list job) (waiting' running' : list positive) (qj' : list job) : Prop := {
  wc_extends : extends [] w w';
  wc_queue : queue_of w' running' qj';
  wc_history : enqueued (history w') = started (history w') ++ qj';
  wc_jobs : forall j, j ∈ qj' -> j ∈ qj \/ job_ok w' j;
  wc_objects : forall o ob, objects w' !! o = Some ob -> objects w !! o = Some ob \/ object_ok w' ob;
  wc_promises : forall p f r l, promise_at w' p = Some (f, r, l) ->
    promise_at w p = Some (f, r, l) /\ untouched w w' (thenables qj ++ waiting) (thenables qj' ++ waiting') p \/ promise_ok w' (thenables qj' ++ waiting') p f r l;
  wc_settling : NoDup (thenables qj' ++ waiting');
  wc_waiting : forall p, p ∈ waiting' -> is_promise w' p;
  wc_open : forall p, vm_promises w' !! p = Some true -> vm_promises w !! p = Some true \/ ~ is_promise w p;
  wc_vm : forall p b, vm_promises w' !! p = Some b -> is_promise w' p;
  wc_events : forall p, (registered p (history w') <> [] \/ scheduled p (history w') <> []) -> is_promise w' p
}.

Lemma world_step (w w' : jworld) (waiting running : list positive) (qj : list job) (waiting' running' : list positive) (qj' : list job) :
  world_ok w waiting running qj -> world_change w w' waiting running qj waiting' running' qj' -> world_ok w' waiting' running' qj'.
Proof.
  intros W C; pose proof (wc_extends _ _ _ _ _ _ _ _ C) as E; constructor.
  - destruct (ext_objects _ _ _ E _ _ (wo_constructor _ _ _ _ W)) as (ob & H & L); cbn in L; subst; exact H.
  - apply (wc_queue _ _ _ _ _ _ _ _ C).
  - apply (wc_history _ _ _ _ _ _ _ _ C).
  - apply Forall_forall; intros j Hj; destruct (wc_jobs _ _ _ _ _ _ _ _ C j Hj) as [H|H]; [|exact H].
    apply (job_kept _ _ _ E); eapply (proj1 (Forall_forall _ _)); [apply (wo_jobs _ _ _ _ W) | exact H].
  - intros o ob Ho; destruct (wc_objects _ _ _ _ _ _ _ _ C o ob Ho) as [H|H]; [|exact H].
    pose proof (wo_objects _ _ _ _ W o ob H) as K; destruct ob; cbn in K |- *; auto.
    + destruct K as [K1 K2]; split; [apply (is_promise_kept _ _ _ E), K1|]; intros K; apply (wc_open _ _ _ _ _ _ _ _ C) in K as [K|K]; contradiction.
    + destruct K as [K1 K2]; split; [apply (is_promise_kept _ _ _ E), K1|]; intros K; apply (wc_open _ _ _ _ _ _ _ _ C) in K as [K|K]; contradiction.
    + apply (is_capability_kept _ _ _ E), K.
    + destruct K as (K1 & K2 & K3); split; [apply (is_constructor_kept _ _ _ E), K1|]; split; [apply (callable_kept _ _ _ E), K2 | apply (without_argument_kept _ _ _ E), K3].
    + destruct K as (K1 & K2 & K3); split; [apply (is_constructor_kept _ _ _ E), K1|]; split; [apply (callable_kept _ _ _ E), K2 | apply (without_argument_kept _ _ _ E), K3].
  - intros p f r l Hp; destruct (wc_promises _ _ _ _ _ _ _ _ C p f r l Hp) as [[H U]|H]; [|exact H].
    eapply promise_untouched; [exact E | exact U | apply (wo_promises _ _ _ _ W); exact H].
  - apply (wc_settling _ _ _ _ _ _ _ _ C).
  - apply (wc_waiting _ _ _ _ _ _ _ _ C).
  - apply (wc_vm _ _ _ _ _ _ _ _ C).
  - apply (wc_events _ _ _ _ _ _ _ _ C).
Qed.
