(* ===== verification/PromiseChanges.v ===== *)
(** * Changes that keep the invariant of promises

    One lemma for each kind of change: a new or changed object, a settled promise, jobs that
    are enqueued, taken and released. *)
From Stdlib Require Import ZArith Lia Bool List.
From stdpp Require Import base gmap list.
From S2P Require Import Prelude JobQueue Promise JobRun PromiseInv.
Import ListNotations.
#[local] Open Scope Z_scope.
#[local] Open Scope partial_scope.

(** ** One object changes *)

Lemma queue_of_same (w w' : jworld) (running : list positive) (qj : list job) :
  jobs w' = jobs w -> job_queue_head_p w' = job_queue_head_p w -> job_queue_tail_p w' = job_queue_tail_p w -> queue_of w running qj -> queue_of w' running qj.
Proof. intros A B C (q & [L T N D] & H); exists q; split; [|exact H]; constructor; rewrite ?A, ?B, ?C; auto. Qed.

(** [h] is at most the registration of a reaction of [o] *)
Record object_change (w w' : jworld) (settling : list positive) (o : positive) (ob : object) (h : list event) : Prop := {
  oc_objects : objects w' = <[o := ob]> (objects w);
  oc_jobs : jobs w' = jobs w;
  oc_head : job_queue_head_p w' = job_queue_head_p w;
  oc_tail : job_queue_tail_p w' = job_queue_tail_p w;
  oc_vm : vm_promises w' = vm_promises w;
  oc_history : history w' = history w ++ h;
  oc_events : forall e, e ∈ h -> exists r, e = REGISTERED o r;
  oc_le : forall old, objects w !! o = Some old -> object_le old ob;
  oc_ok : object_ok w' ob;
  oc_promise : match ob with PROMISE f r l => promise_ok w' settling o f r l | _ => h = [] end;
  oc_resolver : forall p, ob = PROMISE_RESOLVE p \/ ob = PROMISE_REJECT p -> has_resolvers w p \/ forall f r l, promise_at w p = Some (f, r, l) -> promise_ok w' settling p f r l
}.

Lemma events_of_other (h : list event) (o p : positive) : (forall e, e ∈ h -> exists r, e = REGISTERED o r) -> p <> o -> registered p h = [].
Proof.
  intros H Hp; induction h as [|e h IH]; [reflexivity|]; destruct (H e) as [r ->]; [left|]; cbn; rewrite decide_False by congruence.
  apply IH; intros e' He; apply H; right; exact He.
Qed.

Lemma events_no_job (h : list event) (o : positive) : (forall e, e ∈ h -> exists r, e = REGISTERED o r) -> enqueued h = [] /\ started h = [] /\ forall p, scheduled p h = [].
Proof.
  intros H; induction h as [|e h IH]; [auto|]; destruct (H e) as [r ->]; [left|]; apply IH; intros e' He; apply H; right; exact He.
Qed.

Lemma object_change_extends (w w' : jworld) (settling : list positive) (o : positive) (ob : object) (h : list event) (running : list positive) :
  object_change w w' settling o ob h -> extends running w w'.
Proof.
  intros [A B C D V F G L _ _ _]; constructor.
  - intros x ox Hx; rewrite A; destruct (decide (x = o)) as [->|Hne]; [rewrite lookup_insert_eq; eauto | rewrite lookup_insert_ne by congruence; exists ox; split; [exact Hx | apply object_le_refl]].
  - intros jp _; unfold job_at; rewrite B; reflexivity.
  - exists h; exact F.
  - rewrite V; auto.
Qed.

Lemma object_change_ok (w w' : jworld) (waiting running : list positive) (qj : list job) (o : positive) (ob : object) (h : list event) :
  world_ok w waiting running qj -> object_change w w' (thenables qj ++ waiting) o ob h -> world_ok w' waiting running qj.
Proof.
  intros W OC; pose proof (object_change_extends _ _ _ _ _ _ [] OC) as E; destruct OC as [A B C D V F G L K P Q].
  destruct (events_no_job h o G) as (He & Hs & Hc); eapply world_step; [exact W|]; constructor.
  - exact E.
  - eapply queue_of_same; [exact B | exact C | exact D | apply (wo_queue _ _ _ _ W)].
  - rewrite F, enqueued_app, started_app, He, Hs, !app_nil_r; apply (wo_history _ _ _ _ W).
  - auto.
  - intros x ox; rewrite A; destruct (decide (x = o)) as [->|Hne]; [rewrite lookup_insert_eq; intros [= <-]; right; exact K | rewrite lookup_insert_ne by congruence; auto].
  - intros p f r l Hp; apply promise_at_object in Hp; rewrite A in Hp; destruct (decide (p = o)) as [->|Hne].
    { rewrite lookup_insert_eq in Hp; injection Hp as ->; right; exact P. }
    rewrite lookup_insert_ne in Hp by congruence; apply promise_at_object in Hp.
    assert (U : (has_resolvers w' p -> has_resolvers w p) -> untouched w w' (thenables qj ++ waiting) (thenables qj ++ waiting) p).
    { intros U; constructor; auto; [|rewrite F, scheduled_app, Hc, app_nil_r; reflexivity | rewrite V; reflexivity].
      rewrite F, registered_app, (events_of_other h o p G Hne), app_nil_r; reflexivity. }
    destruct (decide (ob = PROMISE_RESOLVE p \/ ob = PROMISE_REJECT p)) as [Hr|Hr]; [destruct (Q p Hr) as [H|H]; [left; auto | right; auto]|].
    left; split; [exact Hp|]; apply U; intros (x & Hx); rewrite A in Hx; destruct (decide (x = o)) as [->|Hx'].
    + exfalso; apply Hr; rewrite lookup_insert_eq in Hx; destruct Hx as [[= ->]|[= ->]]; auto.
    + rewrite lookup_insert_ne in Hx by congruence; exists x; exact Hx.
  - apply (wo_settling _ _ _ _ W).
  - intros p Hp; apply (is_promise_kept _ _ _ E), (wo_waiting _ _ _ _ W), Hp.
  - rewrite V; auto.
  - rewrite V; intros p b Hp; apply (is_promise_kept _ _ _ E), (wo_vm _ _ _ _ W p b), Hp.
  - intros p; rewrite F, scheduled_app, Hc, app_nil_r, registered_app; intros Hp.
    destruct (decide (p = o)) as [->|Hne].
    + destruct ob; try (rewrite P in Hp; cbn in Hp; rewrite app_nil_r in Hp; apply (is_promise_kept _ _ _ E), (wo_events _ _ _ _ W), Hp).
      unfold is_promise, ecma_is_promise; rewrite A, lookup_insert_eq; reflexivity.
    + rewrite (events_of_other h o p G Hne), app_nil_r in Hp; apply (is_promise_kept _ _ _ E), (wo_events _ _ _ _ W), Hp.
Qed.

(** ** New objects *)

Lemma fresh_object_free (w : jworld) : objects w !! fresh_object w = None.
Proof. apply (not_elem_of_dom (objects w)); unfold fresh_object; apply is_fresh. Qed.

Lemma fresh_no_promise (w : jworld) : ~ is_promise w (fresh_object w).
Proof. unfold is_promise, ecma_is_promise; rewrite fresh_object_free; discriminate. Qed.

(** A resolving function of [p] may be made when [p] is not settled, or guarded *)
Definition may_resolve (w : jworld) (settling : list positive) (p : positive) : Prop :=
  is_promise w p /\ vm_promises w !! p <> Some true /\ forall f r l, promise_at w p = Some (f, r, l) -> already_resolved f = false -> pending f = true /\ p ∉ settling.

Definition creatable (w : jworld) (settling : list positive) (ob : object) : Prop :=
  match ob with
  | PROMISE _ _ _ => False
  | PROMISE_RESOLVE p | PROMISE_REJECT p => may_resolve w settling p
  | _ => object_ok w ob
  end.

Lemma set_object_at (w : jworld) (o : positive) (ob : object) : objects (set_object o ob w) !! o = Some ob.
Proof. apply lookup_insert_eq. Qed.

Lemma create_change (w : jworld) (waiting running : list positive) (qj : list job) (ob : object) :
  world_ok w waiting running qj -> creatable w (thenables qj ++ waiting) ob -> object_change w (create_object ob w).2 (thenables qj ++ waiting) (fresh_object w) ob [].
Proof.
  intros W Hc; assert (E : extends [] w (set_object (fresh_object w) ob w)).
  { constructor; [|auto | exists []; rewrite app_nil_r; reflexivity | auto].
    intros x ox Hx; exists ox; split; [|apply object_le_refl]; cbn; rewrite lookup_insert_ne; [exact Hx|]; intros <-; rewrite fresh_object_free in Hx; discriminate. }
  constructor; try reflexivity; cbn [create_object snd].
  - rewrite app_nil_r; reflexivity.
  - intros e He; inversion He.
  - intros old Ho; rewrite fresh_object_free in Ho; discriminate.
  - destruct ob; cbn in Hc |- *; auto.
    + destruct Hc as (A & B & _); split; [apply (is_promise_kept _ _ _ E), A | exact B].
    + destruct Hc as (A & B & _); split; [apply (is_promise_kept _ _ _ E), A | exact B].
    + apply (is_capability_kept _ _ _ E), Hc.
    + destruct Hc as (K1 & K2 & K3); split; [apply (is_constructor_kept _ _ _ E), K1|]; split; [apply (callable_kept _ _ _ E), K2 | apply (without_argument_kept _ _ _ E), K3].
    + destruct Hc as (K1 & K2 & K3); split; [apply (is_constructor_kept _ _ _ E), K1|]; split; [apply (callable_kept _ _ _ E), K2 | apply (without_argument_kept _ _ _ E), K3].
  - destruct ob; try reflexivity; destruct Hc.
  - intros p Hob; right; intros f r l Hp.
    assert (Hm : may_resolve w (thenables qj ++ waiting) p) by (destruct Hob as [-> | ->]; exact Hc); destruct Hm as (_ & Hv & Hm).
    destruct (wo_promises _ _ _ _ W p f r l Hp) as [P1 P2 P3 P4 P5]; constructor; auto.
    + intros H; destruct (P2 H) as (A & rs & B & C & D & F); split; [exact A|]; exists rs; split; [exact B|]; split; [|auto].
      eapply Forall_impl; [exact C|]; intros x; apply (reaction_kept _ _ _ E).
    + intros H _; apply (Hm f r l Hp H).
Qed.

Lemma create_ok (w : jworld) (waiting running : list positive) (qj : list job) (ob : object) :
  world_ok w waiting running qj -> creatable w (thenables qj ++ waiting) ob ->
  world_ok (create_object ob w).2 waiting running qj /\ extends running w (create_object ob w).2.
Proof.
  intros W Hc; pose proof (create_change w waiting running qj ob W Hc) as OC; split; [eapply object_change_ok; eauto | eapply object_change_extends; exact OC].
Qed.

(** A new promise is pending, with nothing registered *)
Lemma create_promise_ok (w : jworld) (waiting running : list positive) (qj : list job) :
  world_ok w waiting running qj ->
  let w' := (create_object (PROMISE ECMA_PROMISE_IS_PENDING UNDEFINED []) w).2 in
  world_ok w' waiting running qj /\ extends running w w' /\ promise_at w' (fresh_object w) = Some (1, UNDEFINED, []) /\
  fresh_object w ∉ thenables qj ++ waiting /\ vm_promises w' !! fresh_object w = None /\ ~ has_resolvers w' (fresh_object w).
Proof.
  intros W; cbn zeta; cbn [create_object snd]; set (p := fresh_object w); set (w' := set_object p _ w).
  assert (Hnp : ~ is_promise w p) by apply fresh_no_promise.
  assert (Hs : p ∉ thenables qj ++ waiting).
  { intros H; apply Hnp; apply elem_of_app in H as [H|H]; [|apply (wo_waiting _ _ _ _ W), H].
    apply list_elem_of_omap in H as (j & Hj & Hp); pose proof (proj1 (Forall_forall _ _) (wo_jobs _ _ _ _ W) j Hj) as K.
    destruct j; try discriminate; injection Hp as ->; apply K. }
  assert (Hv : vm_promises w !! p = None) by (destruct (vm_promises w !! p) as [b|] eqn:Hb; [exfalso; apply Hnp, (wo_vm _ _ _ _ W p b Hb) | reflexivity]).
  assert (He : registered p (history w) = [] /\ scheduled p (history w) = []).
  { destruct (registered p (history w)) eqn:H1, (scheduled p (history w)) eqn:H2; auto; exfalso; apply Hnp, (wo_events _ _ _ _ W p); rewrite H1, H2; [right | left | left]; discriminate. }
  assert (Hr : ~ has_resolvers w' p).
  { intros (x & Hx); cbn in Hx; destruct (decide (x = p)) as [->|Hne].
    - rewrite lookup_insert_eq in Hx; destruct Hx; discriminate.
    - rewrite lookup_insert_ne in Hx by congruence; apply Hnp; destruct Hx as [Hx|Hx]; apply (wo_objects _ _ _ _ W) in Hx; apply Hx. }
  assert (OC : object_change w w' (thenables qj ++ waiting) p (PROMISE ECMA_PROMISE_IS_PENDING UNDEFINED []) []).
  { constructor; try reflexivity; cbn.
    - rewrite app_nil_r; reflexivity.
    - intros e Hx; inversion Hx.
    - intros old Ho; unfold p in Ho; rewrite fresh_object_free in Ho; discriminate.
    - constructor; try discriminate.
      + set_solver.
      + intros _; split; [reflexivity|]; exists []; split; [reflexivity|]; split; [constructor | exact He].
      + intros _ _; split; [reflexivity | exact Hs].
      + cbn; rewrite Hv; discriminate.
    - intros q [H|H]; discriminate. }
  split; [eapply object_change_ok; eauto|]; split; [eapply object_change_extends; exact OC|].
  split; [apply promise_at_object, set_object_at|]; auto.
Qed.

(** ** A promise changes *)

(** The new flags keep what a settled promise says *)
Definition flags_le (f f' : Z) (r r' : value) : Prop := pending f = false -> pending f' = false /\ fulfilled f' = fulfilled f /\ r' = r.

Lemma promise_change_extends (w w' : jworld) (p : positive) (f f' : Z) (r r' : value) (l l' : list item) (h : list event) (running : list positive) :
  promise_at w p = Some (f, r, l) -> objects w' = <[p := PROMISE f' r' l']> (objects w) -> flags_le f f' r r' ->
  vm_promises w' = vm_promises w -> history w' = history w ++ h -> (forall jp, jp ∈ running -> job_at w' jp = job_at w jp) -> extends running w w'.
Proof.
  intros Hp Ho L Hv Hh Hj; apply promise_at_object in Hp; constructor; [|exact Hj | exists h; exact Hh | rewrite Hv; auto].
  intros x ox Hx; rewrite Ho; destruct (decide (x = p)) as [->|Hne]; [|rewrite lookup_insert_ne by congruence; exists ox; split; [exact Hx | apply object_le_refl]].
  rewrite lookup_insert_eq; eexists; split; [reflexivity|]; rewrite Hp in Hx; injection Hx as <-; do 3 eexists; split; [reflexivity | exact L].
Qed.

Lemma promise_change_resolvers (w w' : jworld) (p q : positive) (f : Z) (r : value) (l : list item) :
  objects w' = <[p := PROMISE f r l]> (objects w) -> has_resolvers w' q -> has_resolvers w q.
Proof.
  intros Ho (x & Hx); rewrite Ho in Hx; destruct (decide (x = p)) as [->|Hne]; [rewrite lookup_insert_eq in Hx; destruct Hx; discriminate|].
  rewrite lookup_insert_ne in Hx by congruence; exists x; exact Hx.
Qed.

Lemma reactions_kept (w w' : jworld) (rs : list reaction) : extends [] w w' -> Forall (reaction_ok w) rs -> Forall (reaction_ok w') rs.
Proof. intros E H; eapply Forall_impl; [exact H|]; intros x; apply (reaction_kept _ _ _ E). Qed.

(** ** Flags and reactions of a promise *)

Ltac flag_cases H := unfold flags_ok in H; repeat (apply elem_of_cons in H as [-> | H]); [ .. | inversion H].

Lemma set_flags_ok (w : jworld) (waiting running : list positive) (qj : list job) (p : positive) (f f' : Z) (r : value) (l : list item) :
  world_ok w waiting running qj -> promise_at w p = Some (f, r, l) -> flags_ok f' -> pending f' = pending f -> fulfilled f' = fulfilled f ->
  (already_resolved f' = false -> already_resolved f = false \/ (pending f = true /\ p ∉ thenables qj ++ waiting)) ->
  (already_resolved f' = already_resolved f \/ vm_promises w !! p <> Some true) ->
  world_ok (set_object p (PROMISE f' r l) w) waiting running qj /\ extends running w (set_object p (PROMISE f' r l) w).
Proof.
  intros W Hp Hf Hpe Hfu HA HV; set (w' := set_object p (PROMISE f' r l) w).
  assert (L : flags_le f f' r r) by (intros H; rewrite Hpe, Hfu; auto).
  assert (E : extends [] w w') by (eapply promise_change_extends with (h := []); try reflexivity; [exact Hp | exact L | cbn; rewrite app_nil_r; reflexivity]).
  assert (OC : object_change w w' (thenables qj ++ waiting) p (PROMISE f' r l) []).
  { constructor; try reflexivity.
    - cbn; rewrite app_nil_r; reflexivity.
    - intros e He; inversion He.
    - intros old Hold; rewrite (proj1 (promise_at_object w p f r l) Hp) in Hold; injection Hold as <-; do 3 eexists; split; [reflexivity | exact L].
    - destruct (wo_promises _ _ _ _ W p f r l Hp) as [P1 P2 P3 P4 P5]; constructor.
      + exact Hf.
      + rewrite Hpe; intros H; destruct (P2 H) as (A & rs & B & C & D & F); split; [exact A|]; exists rs; split; [exact B|]; split; [eapply reactions_kept; eauto | auto].
      + rewrite Hpe, Hfu; exact P3.
      + rewrite Hpe; intros H1 H2; destruct (HA H1) as [H|H]; [apply P4; [exact H|] | exact H].
        destruct H2 as [H2|H2]; [left; eapply promise_change_resolvers; [|exact H2]; reflexivity | right; exact H2].
      + cbn; intros H; destruct HV as [HV|HV]; [|contradiction]; rewrite Hpe, HV; apply P5, H.
    - intros q [H|H]; discriminate. }
  split; [eapply object_change_ok; eauto | eapply object_change_extends; exact OC].
Qed.

Lemma decode_app (l1 l2 : list item) (rs1 rs2 : list reaction) : decode l1 = Some rs1 -> decode l2 = Some rs2 -> decode (l1 ++ l2) = Some (rs1 ++ rs2).
Proof.
  intros H1 H2; remember (length l1) as n eqn:En; assert (Hn : (length l1 <= n)%nat) by lia; clear En; revert l1 rs1 Hn H1; induction n as [|n IH]; intros l1 rs1 Hn H1.
  - destruct l1; [|cbn in Hn; lia]; injection H1 as <-; exact H2.
  - destruct l1 as [|[o [] [] []|v] l1]; cbn in H1; try discriminate; [injection H1 as <-; exact H2 | ..]; cbn in Hn.
    1,3,5,7: destruct (decode l1) as [rs|] eqn:D; [|discriminate]; injection H1 as <-; cbn; rewrite (IH l1 rs) by (lia || exact D); reflexivity.
    + destruct l1 as [|[|a] [|[|b] l1]]; try discriminate; cbn in Hn; destruct (decode l1) as [rs|] eqn:D; [|discriminate]; injection H1 as <-; cbn; rewrite (IH l1 rs) by (lia || exact D); reflexivity.
    + destruct l1 as [|[|a] l1]; try discriminate; cbn in Hn; destruct (decode l1) as [rs|] eqn:D; [|discriminate]; injection H1 as <-; cbn; rewrite (IH l1 rs) by (lia || exact D); reflexivity.
    + destruct l1 as [|[|a] l1]; try discriminate; cbn in Hn; destruct (decode l1) as [rs|] eqn:D; [|discriminate]; injection H1 as <-; cbn; rewrite (IH l1 rs) by (lia || exact D); reflexivity.
    + destruct (decode l1) as [rs|] eqn:D; [|discriminate]; injection H1 as <-; cbn; rewrite (IH l1 rs) by (lia || exact D); reflexivity.
Qed.

(** A reaction is added to a pending promise *)
Lemma register_ok (w : jworld) (waiting running : list positive) (qj : list job) (p : positive) (f : Z) (r : value) (l items : list item) (rx : reaction) :
  world_ok w waiting running qj -> promise_at w p = Some (f, r, l) -> pending f = true -> decode items = Some [rx] -> reaction_ok w rx ->
  let w' := set_object p (PROMISE f r (l ++ items)) (record (REGISTERED p rx) w) in
  world_ok w' waiting running qj /\ extends running w w'.
Proof.
  intros W Hp Hpe Hi Hrx; cbn zeta; set (w' := set_object p _ _).
  assert (L : flags_le f f r r) by (intros H; auto).
  assert (E : extends [] w w') by (eapply promise_change_extends with (h := [REGISTERED p rx]); try reflexivity; [exact Hp | exact L]).
  assert (OC : object_change w w' (thenables qj ++ waiting) p (PROMISE f r (l ++ items)) [REGISTERED p rx]).
  { constructor; try reflexivity.
    - intros e He; apply list_elem_of_singleton in He as ->; eauto.
    - intros old Hold; rewrite (proj1 (promise_at_object w p f r l) Hp) in Hold; injection Hold as <-; do 3 eexists; split; [reflexivity | exact L].
    - destruct (wo_promises _ _ _ _ W p f r l Hp) as [P1 P2 P3 P4 P5]; constructor; try congruence; auto.
      + intros H; destruct (P2 H) as (A & rs & B & C & D & F); split; [exact A|]; exists (rs ++ [rx]); split; [apply decode_app; assumption|]; cbn [w' set_object record history]; split; [|split].
        * apply Forall_app; split; [eapply reactions_kept; eauto | constructor; [|constructor]; apply (reaction_kept _ _ _ E), Hrx].
        * rewrite registered_app, D; cbn; rewrite decide_True by reflexivity; reflexivity.
        * rewrite scheduled_app, F; reflexivity.
      + intros H1 H2; apply P4; [exact H1|]; destruct H2 as [H2|H2]; [left; eapply promise_change_resolvers; [|exact H2]; reflexivity | right; exact H2].
    - intros q [H|H]; discriminate. }
  split; [eapply object_change_ok; eauto | eapply object_change_extends; exact OC].
Qed.

(** ** Jobs are enqueued *)

(** Every reaction is decoded, and its job enqueued *)
Lemma trigger_added (p : positive) (v : value) (is_reject : bool) (running : list positive) (l : list item) (rs : list reaction) (qj : list job) (w : jworld) :
  decode l = Some rs -> queue_of w running qj ->
  exists w', ecma_promise_trigger_reactions p l v is_reject w = Some w' /\ added (Some p) (map (reaction_job is_reject v) rs) running qj w w'.
Proof.
  remember (length l) as n eqn:En; assert (Hn : (length l <= n)%nat) by lia; clear En; revert l rs qj w Hn; induction n as [|n IH]; intros l rs qj w Hn H Hq.
  { destruct l; [|cbn in Hn; lia]; injection H as <-; exists w; split; [reflexivity | apply added_nothing; exact Hq]. }
  assert (Hstep : forall rx rs l j, decode l = Some rs -> (length l <= n)%nat -> reaction_job is_reject v rx = j ->
    exists w', (let? w1 := ecma_enqueue_job (Some p) j w in ecma_promise_trigger_reactions p l v is_reject w1) = Some w' /\ added (Some p) (map (reaction_job is_reject v) (rx :: rs)) running qj w w').
  { intros rx rs' l' j D Hl Hj; destruct (ecma_enqueue_job_added (Some p) j running qj w Hq) as (w1 & Hw1 & A1); rewrite Hw1.
    destruct (IH l' rs' (qj ++ [j]) w1 Hl D (added_queue _ _ _ _ _ _ A1)) as (w2 & Hw2 & A2); exists w2; split; [exact Hw2|].
    cbn [map]; rewrite Hj; exact (added_trans _ [j] _ _ _ _ _ _ A1 A2). }
  destruct l as [|[o [] [] []|h] l]; cbn in H; try discriminate; [injection H as <-; exists w; split; [reflexivity | apply added_nothing; exact Hq] | ..]; cbn in Hn.
  1,3,5,7: destruct (decode l) as [rs'|] eqn:D; [|discriminate]; injection H as <-; apply Hstep; [exact D | lia | reflexivity].
  - destruct l as [|[|a] [|[|b] l]]; try discriminate; cbn in Hn; destruct (decode l) as [rs'|] eqn:D; [|discriminate]; injection H as <-; apply Hstep; [exact D | lia | reflexivity].
  - destruct l as [|[|a] l]; try discriminate; cbn in Hn; destruct (decode l) as [rs'|] eqn:D; [|discriminate]; injection H as <-; apply Hstep; [exact D | lia | reflexivity].
  - destruct l as [|[|a] l]; try discriminate; cbn in Hn; destruct (decode l) as [rs'|] eqn:D; [|discriminate]; injection H as <-; apply Hstep; [exact D | lia | reflexivity].
  - destruct (decode l) as [rs'|] eqn:D; [|discriminate]; injection H as <-; apply Hstep; [exact D | lia | reflexivity].
Qed.

Lemma reaction_jobs_ok (w : jworld) (is_reject : bool) (v : value) (rs : list reaction) (j : job) :
  Forall (reaction_ok w) rs -> j ∈ map (reaction_job is_reject v) rs -> job_ok w j.
Proof.
  intros H Hj; apply list_elem_of_In, in_map_iff in Hj as (rx & <- & Hx); apply list_elem_of_In in Hx; pose proof (proj1 (Forall_forall _ _) H rx Hx) as K.
  destruct rx; cbn in K |- *; [|auto]; destruct K as (A & B & C); split; [exact A|]; destruct is_reject; tauto.
Qed.

Lemma reaction_jobs_no_thenable (is_reject : bool) (v : value) (rs : list reaction) : thenables (map (reaction_job is_reject v) rs) = [].
Proof. induction rs as [|[] rs IH]; [reflexivity | exact IH | exact IH]. Qed.

Lemma thenables_app (a b : list job) : thenables (a ++ b) = thenables a ++ thenables b.
Proof. apply omap_app. Qed.

(** A promise is settled, and its reactions scheduled *)
Lemma settle_ok (w w2 : jworld) (waiting running : list positive) (qj : list job) (p : positive) (f f' : Z) (r v : value) (l : list item) (ob : object) (rs : list reaction) (is_reject : bool) :
  world_ok w waiting running qj -> promise_at w p = Some (f, r, l) -> decode l = Some rs -> p ∉ thenables qj ++ waiting -> pending f = true ->
  flags_ok f' -> pending f' = false -> fulfilled f' = negb is_reject -> (already_resolved f' = true \/ ~ usable w p) -> vm_promises w !! p <> Some true ->
  added (Some p) (map (reaction_job is_reject v) rs) running qj (set_object p ob w) w2 ->
  world_ok (set_object p (PROMISE f' v []) w2) waiting running (qj ++ map (reaction_job is_reject v) rs) /\ extends running w (set_object p (PROMISE f' v []) w2).
Proof.
  intros W Hp D Hs Hpe Hf Hpf Hfu HA HV A; set (js := map (reaction_job is_reject v) rs); set (w3 := set_object p (PROMISE f' v []) w2).
  assert (Hobj : objects w3 = <[p := PROMISE f' v []]> (objects w)).
  { cbn; rewrite (added_objects _ _ _ _ _ _ A); cbn; rewrite insert_insert_eq; reflexivity. }
  assert (Hvm : vm_promises w3 = vm_promises w) by (cbn; rewrite (added_vm _ _ _ _ _ _ A); reflexivity).
  assert (Hh : history w3 = history w ++ (ENQUEUED (Some p) <$> js)) by (cbn; rewrite (added_history _ _ _ _ _ _ A); reflexivity).
  assert (E : extends running w w3) by (eapply promise_change_extends; [exact Hp | exact Hobj | intros H; congruence | exact Hvm | exact Hh | intros jp Hjp; apply (added_running _ _ _ _ _ _ A jp Hjp)]).
  pose proof (extends_fewer running [] _ _ ltac:(intros jp H; inversion H) E) as E0.
  destruct (wo_promises _ _ _ _ W p f r l Hp) as [P1 P2 P3 P4 P5]; destruct (P2 Hpe) as (_ & rs' & D' & R & G & S); rewrite D in D'; injection D' as <-.
  assert (Hres : forall q, has_resolvers w3 q -> has_resolvers w q) by (intros q; apply (promise_change_resolvers w w3 p q f' v [] Hobj)).
  assert (Hset : thenables (qj ++ js) ++ waiting = thenables qj ++ waiting) by (rewrite thenables_app; unfold js; rewrite reaction_jobs_no_thenable, app_nil_r; reflexivity).
  split; [|exact E]; eapply world_step; [exact W|]; constructor.
  - exact E0.
  - eapply queue_of_same; [| | | apply (added_queue _ _ _ _ _ _ A)]; reflexivity.
  - rewrite Hh, enqueued_app, started_app, enqueued_map, started_map, (wo_history _ _ _ _ W), app_nil_r, app_assoc; reflexivity.
  - intros j Hj; apply elem_of_app in Hj as [Hj|Hj]; [left; exact Hj | right]; apply (job_kept _ _ _ E0); eapply reaction_jobs_ok; [exact R | exact Hj].
  - intros o x; rewrite Hobj; destruct (decide (o = p)) as [->|Hne]; [rewrite lookup_insert_eq; intros [= <-]; right; exact I | rewrite lookup_insert_ne by congruence; auto].
  - intros q f2 r2 l2 Hq; rewrite Hset; destruct (decide (q = p)) as [->|Hne].
    + right; apply promise_at_object in Hq; rewrite Hobj, lookup_insert_eq in Hq; injection Hq as <- <- <-; constructor; try congruence.
      * intros _; split; [reflexivity|]; split; [exact Hs|]; rewrite Hh, registered_app, scheduled_app, S, registered_map, scheduled_map_same, app_nil_r, Hfu, negb_involutive, G; reflexivity.
      * intros H1 H2; destruct HA as [HA|HA]; [congruence|]; exfalso; apply HA; destruct H2 as [H2|H2]; [left; apply Hres, H2 | right; congruence].
    + left; apply promise_at_object in Hq; rewrite Hobj, lookup_insert_ne in Hq by congruence; split; [apply promise_at_object, Hq|]; constructor; auto.
      * rewrite Hh, registered_app, registered_map, app_nil_r; reflexivity.
      * rewrite Hh, scheduled_app, scheduled_map_other, app_nil_r by congruence; reflexivity.
      * congruence.
  - rewrite Hset; apply (wo_settling _ _ _ _ W).
  - intros q Hq; apply (is_promise_kept _ _ _ E0), (wo_waiting _ _ _ _ W), Hq.
  - rewrite Hvm; auto.
  - rewrite Hvm; intros q b Hq; apply (is_promise_kept _ _ _ E0), (wo_vm _ _ _ _ W q b), Hq.
  - intros q Hq; apply (is_promise_kept _ _ _ E0); destruct (decide (q = p)) as [->|Hne]; [eapply promise_at_is_promise; exact Hp|].
    apply (wo_events _ _ _ _ W); rewrite Hh, registered_app, scheduled_app, registered_map, scheduled_map_other, !app_nil_r in Hq by congruence; exact Hq.
Qed.

(** A change of the history, the queue or what is waiting leaves the objects as they are *)
Record same_objects (w w' : jworld) (waiting running : list positive) (qj : list job) (waiting' running' : list positive) (qj' : list job) (h : list event) : Prop := {
  so_objects : objects w' = objects w;
  so_vm : vm_promises w' = vm_promises w;
  so_history : history w' = history w ++ h;
  so_queue : queue_of w' running' qj';
  so_events : enqueued (history w') = started (history w') ++ qj';
  so_jobs : forall j, j ∈ qj' -> j ∈ qj \/ job_ok w j;
  so_settling : forall p, p ∈ thenables qj' ++ waiting' -> p ∈ thenables qj ++ waiting;
  so_apart : NoDup (thenables qj' ++ waiting');
  so_waiting : forall p, p ∈ waiting' -> is_promise w p;
  so_promises : forall p f r l, promise_at w p = Some (f, r, l) -> registered p h = [] /\ scheduled p h = [] \/ promise_ok w' (thenables qj' ++ waiting') p f r l;
  so_known : forall p, registered p h <> [] \/ scheduled p h <> [] -> is_promise w p
}.

Lemma same_objects_extends (w w' : jworld) (h : list event) (running : list positive) :
  objects w' = objects w -> vm_promises w' = vm_promises w -> history w' = history w ++ h -> (forall jp, jp ∈ running -> job_at w' jp = job_at w jp) -> extends running w w'.
Proof. intros A B C D; constructor; [rewrite A; intros o ob H; exists ob; split; [exact H | apply object_le_refl] | exact D | exists h; exact C | rewrite B; auto]. Qed.

Lemma same_objects_ok (w w' : jworld) (waiting running : list positive) (qj : list job) (waiting' running' : list positive) (qj' : list job) (h : list event) :
  world_ok w waiting running qj -> same_objects w w' waiting running qj waiting' running' qj' h -> world_ok w' waiting' running' qj'.
Proof.
  intros W [A B C D F G H I J K L].
  assert (E : extends [] w w') by (eapply same_objects_extends; eauto; intros jp Hjp; inversion Hjp).
  assert (Hpr : forall q, is_promise w' q <-> is_promise w q) by (intros q; unfold is_promise, ecma_is_promise; rewrite A; reflexivity).
  eapply world_step; [exact W|]; constructor; auto.
  - intros j Hj; destruct (G j Hj) as [Hj'|Hj']; [left; exact Hj' | right; apply (job_kept _ _ _ E), Hj'].
  - rewrite A; auto.
  - intros p f r l Hp; assert (Hp' : promise_at w p = Some (f, r, l)) by (unfold promise_at in *; rewrite A in Hp; exact Hp).
    destruct (K p f r l Hp') as [(K1 & K2)|K1]; [left | right; exact K1]; split; [exact Hp'|]; constructor; auto.
    + rewrite C, registered_app, K1, app_nil_r; reflexivity.
    + rewrite C, scheduled_app, K2, app_nil_r; reflexivity.
    + unfold has_resolvers; rewrite A; auto.
    + rewrite B; reflexivity.
  - intros p Hp; apply Hpr, J, Hp.
  - rewrite B; auto.
  - rewrite B; intros p b Hp; apply Hpr, (wo_vm _ _ _ _ W p b Hp).
  - intros p Hp; apply Hpr; destruct (registered p h) eqn:H1; [|apply L; left; congruence]; destruct (scheduled p h) eqn:H2; [|apply L; right; congruence].
    apply (wo_events _ _ _ _ W); rewrite C, registered_app, scheduled_app, H1, H2, !app_nil_r in Hp; exact Hp.
Qed.

(** A job that is not the reaction of a promise; a thenable's promise was waiting before *)
Lemma enqueue_ok (w w' : jworld) (waiting running : list positive) (qj : list job) (j : job) :
  world_ok w (thenables [j] ++ waiting) running qj -> added None [j] running qj w w' -> job_ok w j ->
  world_ok w' waiting running (qj ++ [j]) /\ extends running w w'.
Proof.
  intros W A Hj; pose proof (added_history _ _ _ _ _ _ A) as Hh; split.
  2: { eapply same_objects_extends; [apply (added_objects _ _ _ _ _ _ A) | apply (added_vm _ _ _ _ _ _ A) | exact Hh | apply (added_running _ _ _ _ _ _ A)]. }
  assert (Hset : thenables (qj ++ [j]) ++ waiting = thenables qj ++ thenables [j] ++ waiting) by (rewrite thenables_app, app_assoc; reflexivity).
  eapply same_objects_ok; [exact W|]; constructor.
  - apply (added_objects _ _ _ _ _ _ A).
  - apply (added_vm _ _ _ _ _ _ A).
  - exact Hh.
  - apply (added_queue _ _ _ _ _ _ A).
  - rewrite Hh, enqueued_app, started_app, (wo_history _ _ _ _ W); cbn; rewrite app_nil_r, app_assoc; reflexivity.
  - intros x Hx; apply elem_of_app in Hx as [Hx|Hx]; [left; exact Hx | right; apply list_elem_of_singleton in Hx as ->; exact Hj].
  - intros p; rewrite Hset; auto.
  - rewrite Hset; apply (wo_settling _ _ _ _ W).
  - intros p Hp; apply (wo_waiting _ _ _ _ W), elem_of_app; right; exact Hp.
  - intros p f r l _; left; cbn; auto.
  - cbn; intros p [H|H]; contradiction.
Qed.

(** The reaction to a promise that is settled *)
Lemma react_ok (w w' : jworld) (waiting running : list positive) (qj : list job) (p : positive) (f : Z) (r : value) (l : list item) (rx : reaction) :
  world_ok w waiting running qj -> promise_at w p = Some (f, r, l) -> pending f = false -> reaction_ok w rx ->
  added (Some p) [reaction_job (negb (fulfilled f)) r rx] running qj (record (REGISTERED p rx) w) w' ->
  world_ok w' waiting running (qj ++ [reaction_job (negb (fulfilled f)) r rx]) /\ extends running w w'.
Proof.
  intros W Hp Hpe Hrx A; set (j := reaction_job (negb (fulfilled f)) r rx) in *; pose proof (added_history _ _ _ _ _ _ A) as Hh; cbn in Hh; rewrite <- app_assoc in Hh.
  pose proof (added_objects _ _ _ _ _ _ A) as Hobj; pose proof (added_vm _ _ _ _ _ _ A) as Hvm; cbn in Hobj, Hvm.
  assert (Hset : thenables (qj ++ [j]) ++ waiting = thenables qj ++ waiting) by (rewrite thenables_app; destruct rx; cbn; rewrite app_nil_r; reflexivity).
  assert (E : extends running w w') by (eapply same_objects_extends; [exact Hobj | exact Hvm | exact Hh | apply (added_running _ _ _ _ _ _ A)]).
  split; [|exact E]; eapply same_objects_ok; [exact W|]; constructor.
  - exact Hobj.
  - exact Hvm.
  - exact Hh.
  - apply (added_queue _ _ _ _ _ _ A).
  - rewrite Hh, enqueued_app, started_app, (wo_history _ _ _ _ W); cbn; rewrite app_nil_r, app_assoc; reflexivity.
  - intros x Hx; apply elem_of_app in Hx as [Hx|Hx]; [left; exact Hx | right; apply list_elem_of_singleton in Hx as ->]; eapply (reaction_jobs_ok w _ _ [rx]); [constructor; [exact Hrx | constructor] | left].
  - intros q; rewrite Hset; auto.
  - rewrite Hset; apply (wo_settling _ _ _ _ W).
  - apply (wo_waiting _ _ _ _ W).
  - intros q f2 r2 l2 Hq; destruct (decide (p = q)) as [<-|Hne]; [right | left; cbn; rewrite !decide_False by exact Hne; auto].
    rewrite Hp in Hq; injection Hq as <- <- <-; destruct (wo_promises _ _ _ _ W p f r l Hp) as [P1 P2 P3 P4 P5]; destruct (P3 Hpe) as (B & C & D); rewrite Hset; constructor; try congruence.
    + intros _; split; [exact B|]; split; [exact C|]; rewrite Hh, registered_app, scheduled_app; cbn; rewrite !decide_True by reflexivity.
      rewrite D, map_app; reflexivity.
    + intros H1 H2; apply P4; [exact H1|]; destruct H2 as [(x & Hx)|H2]; [left; exists x; rewrite Hobj in Hx; exact Hx | right; congruence].
    + rewrite Hvm; exact P5.
  - intros q Hq; destruct (decide (p = q)) as [<-|Hne]; [eapply promise_at_is_promise; exact Hp|]; cbn in Hq; rewrite !decide_False in Hq by exact Hne; destruct Hq; contradiction.
Qed.

(** ** What waits *)

Lemma waiting_weaken (w : jworld) (waiting running : list positive) (qj : list job) (p : positive) : world_ok w (p :: waiting) running qj -> world_ok w waiting running qj.
Proof.
  intros W; assert (Hs : forall q, q ∈ thenables qj ++ waiting -> q ∈ thenables qj ++ p :: waiting) by (intros q; rewrite !elem_of_app, elem_of_cons; tauto).
  eapply same_objects_ok; [exact W|]; apply Build_same_objects with (h := []); try reflexivity; auto.
  - rewrite app_nil_r; reflexivity.
  - apply (wo_queue _ _ _ _ W).
  - apply (wo_history _ _ _ _ W).
  - pose proof (wo_settling _ _ _ _ W) as N; eapply NoDup_Permutation_proper in N; [|apply Permutation_middle]; apply NoDup_cons in N as [_ N]; exact N.
  - intros q Hq; apply (wo_waiting _ _ _ _ W); right; exact Hq.
  - intros q [H|H]; contradiction.
Qed.

(** What is settled later is pending, and guarded *)
Lemma waiting_facts (w : jworld) (waiting running : list positive) (qj : list job) (p : positive) (f : Z) (r : value) (l : list item) :
  world_ok w waiting running qj -> p ∈ thenables qj ++ waiting -> promise_at w p = Some (f, r, l) ->
  pending f = true /\ (already_resolved f = true \/ ~ usable w p) /\ vm_promises w !! p <> Some true.
Proof.
  intros W Hs Hp; destruct (wo_promises _ _ _ _ W p f r l Hp) as [P1 P2 P3 P4 P5]; split; [|split].
  - destruct (pending f) eqn:E; [reflexivity|]; destruct (P3 eq_refl) as (_ & H & _); contradiction.
  - destruct (already_resolved f) eqn:E; [left; reflexivity | right; intros H; destruct (P4 eq_refl H); contradiction].
  - intros H; destruct (P5 H) as (_ & _ & H2); contradiction.
Qed.

Lemma waiting_once (w : jworld) (waiting running : list positive) (qj : list job) (p : positive) : world_ok w (p :: waiting) running qj -> p ∉ thenables qj ++ waiting.
Proof. intros W; pose proof (wo_settling _ _ _ _ W) as N; eapply NoDup_Permutation_proper in N; [|apply Permutation_middle]; apply NoDup_cons in N as [N _]; exact N. Qed.

(** ecma_fulfill_promise starts to wait *)
Lemma waiting_more (w : jworld) (waiting running : list positive) (qj : list job) (p : positive) (f : Z) (r : value) (l : list item) :
  world_ok w waiting running qj -> promise_at w p = Some (f, r, l) -> pending f = true -> (already_resolved f = true \/ ~ usable w p) -> vm_promises w !! p <> Some true ->
  p ∉ thenables qj ++ waiting -> world_ok w (p :: waiting) running qj.
Proof.
  intros W Hp Hpe HA HV Hs; destruct W as [W1 W2 W3 W4 W5 W6 W7 W8 W9 W10].
  assert (Hin : forall q, q <> p -> q ∈ thenables qj ++ p :: waiting -> q ∈ thenables qj ++ waiting) by (intros q Hq; rewrite !elem_of_app, elem_of_cons; tauto).
  constructor; auto.
  - intros q f2 r2 l2 Hq; destruct (W6 q f2 r2 l2 Hq) as [P1 P2 P3 P4 P5]; destruct (decide (q = p)) as [->|Hne].
    + rewrite Hp in Hq; injection Hq as <- <- <-; constructor; auto; try congruence; intros H1 H2; destruct HA as [HA|HA]; [congruence | contradiction].
    + constructor; auto.
      * intros H; destruct (P3 H) as (A & B & C); split; [exact A|]; split; [intros K; apply B, Hin; assumption | exact C].
      * intros H1 H2; destruct (P4 H1 H2) as (A & B); split; [exact A | intros K; apply B, Hin; assumption].
      * intros H; destruct (P5 H) as (A & B & C); split; [exact A|]; split; [exact B | intros K; apply C, Hin; assumption].
  - eapply NoDup_Permutation_proper; [symmetry; apply Permutation_middle|]; constructor; assumption.
  - intros q Hq; apply elem_of_cons in Hq as [->|Hq]; [eapply promise_at_is_promise; exact Hp | apply W8, Hq].
Qed.

(** ** Jobs start and end *)

(** The first job is taken; its thenable no longer waits *)
Lemma take_ok (w : jworld) (waiting running : list positive) (qj : list job) (job_p : positive) :
  world_ok w waiting running qj -> job_queue_head_p w = Some job_p ->
  exists j next qj', qj = j :: qj' /\ jobs w !! job_p = Some (j, next) /\ job_ok w j /\
    let w' := record (STARTED j) (set_queue (jobs w) next (job_queue_tail_p w) w) in world_ok w' waiting (job_p :: running) qj' /\ extends running w w'.
Proof.
  intros W Hh; destruct (queue_take w running qj job_p Hh (wo_queue _ _ _ _ W)) as (j & next & qj' & -> & Hj & Hq).
  exists j, next, qj'; split; [reflexivity|]; split; [exact Hj|]; split; [exact (proj1 (Forall_cons_1 _ _ _ (wo_jobs _ _ _ _ W)))|]; cbn zeta; split; [|eapply same_objects_extends; reflexivity].
  assert (Hset : thenables (j :: qj') = thenables [j] ++ thenables qj') by apply (thenables_app [j] qj').
  eapply same_objects_ok; [exact W|]; apply Build_same_objects with (h := [STARTED j]); try reflexivity; auto.
  - eapply queue_of_same; [| | | exact Hq]; reflexivity.
  - cbn [record set_queue history]; rewrite enqueued_app, started_app; cbn; rewrite app_nil_r, <- app_assoc; apply (wo_history _ _ _ _ W).
  - intros x Hx; left; right; exact Hx.
  - intros p Hp; rewrite Hset, <- app_assoc; apply elem_of_app; right; exact Hp.
  - pose proof (wo_settling _ _ _ _ W) as N; rewrite Hset, <- app_assoc in N; apply NoDup_app in N; apply N.
  - apply (wo_waiting _ _ _ _ W).
  - cbn; intros q [H|H]; contradiction.
Qed.

(** The promise of a thenable's job is no longer settled by anything else *)
Lemma taken_thenable (w : jworld) (waiting running : list positive) (qj : list job) (p : positive) (thenable f : value) :
  world_ok w waiting running (ECMA_JOB_PROMISE_THENABLE p thenable f :: qj) -> p ∉ thenables qj ++ waiting.
Proof. intros W; pose proof (wo_settling _ _ _ _ W) as N; cbn in N; apply NoDup_cons in N; apply N. Qed.

Lemma free_ok (w : jworld) (waiting running : list positive) (qj : list job) (job_p : positive) :
  world_ok w waiting (job_p :: running) qj -> world_ok (free_job job_p w) waiting running qj /\ extends running w (free_job job_p w).
Proof.
  intros W; split.
  2: { apply (same_objects_extends w (free_job job_p w) []); try reflexivity; [cbn; rewrite app_nil_r; reflexivity|]; intros jp Hjp; eapply running_kept; [apply (wo_queue _ _ _ _ W) | exact Hjp]. }
  eapply same_objects_ok; [exact W|]; apply Build_same_objects with (h := []); try reflexivity; auto.
  - cbn; rewrite app_nil_r; reflexivity.
  - apply queue_free, (wo_queue _ _ _ _ W).
  - apply (wo_history _ _ _ _ W).
  - apply (wo_settling _ _ _ _ W).
  - apply (wo_waiting _ _ _ _ W).
  - intros q [H|H]; contradiction.
Qed.

(** ** Promises of the interpreter *)

Lemma set_vm_ok (w : jworld) (waiting running : list positive) (qj : list job) (p : positive) (open : bool) (f : Z) (r : value) (l : list item) :
  world_ok w waiting running qj -> promise_at w p = Some (f, r, l) -> ~ has_resolvers w p ->
  pending f = true -> already_resolved f = false -> p ∉ thenables qj ++ waiting -> (vm_promises w !! p = Some false -> open = false) ->
  world_ok (set_vm p open w) waiting running qj /\ extends running w (set_vm p open w).
Proof.
  intros W Hp Hr Hpe Hal Hs Ho; pose proof W as W'; destruct W' as [W1 W2 W3 W4 W5 W6 W7 W8 W9 W10]; split.
  2: { constructor; [intros o ob H; exists ob; split; [exact H | apply object_le_refl] | reflexivity | exists []; cbn; rewrite app_nil_r; reflexivity|].
       intros q Hq; cbn; destruct (decide (q = p)) as [->|Hne]; [rewrite lookup_insert_eq, (Ho Hq); reflexivity | rewrite lookup_insert_ne by congruence; exact Hq]. }
  constructor; auto.
  - eapply queue_of_same; [| | | exact W2]; reflexivity.
  - intros o ob Hob; pose proof (W5 o ob Hob) as K; destruct ob; cbn in K |- *; auto.
    + destruct K as [K1 K2]; split; [exact K1|]; destruct (decide (promise = p)) as [->|Hne]; [exfalso; apply Hr; exists o; auto | rewrite lookup_insert_ne by congruence; exact K2].
    + destruct K as [K1 K2]; split; [exact K1|]; destruct (decide (promise = p)) as [->|Hne]; [exfalso; apply Hr; exists o; auto | rewrite lookup_insert_ne by congruence; exact K2].
  - intros q f2 r2 l2 Hq; destruct (W6 q f2 r2 l2 Hq) as [P1 P2 P3 P4 P5]; destruct (decide (q = p)) as [->|Hne].
    + assert (Hq' : promise_at w p = Some (f2, r2, l2)) by exact Hq; rewrite Hp in Hq'; injection Hq' as <- <- <-; constructor; auto.
    + constructor; auto.
      * intros H1 [H2|H2]; apply P4; auto; [left; exact H2|]; cbn in H2; rewrite lookup_insert_ne in H2 by congruence; right; exact H2.
      * cbn; rewrite lookup_insert_ne by congruence; exact P5.
  - intros q b Hq; cbn in Hq; destruct (decide (q = p)) as [->|Hne]; [eapply promise_at_is_promise; exact Hp | rewrite lookup_insert_ne in Hq by congruence; exact (W9 q b Hq)].
Qed.

(** ** Capabilities *)

Lemma set_capability_ok (w : jworld) (waiting running : list positive) (qj : list job) (o : positive) (p p' a a' b b' : value) :
  world_ok w waiting running qj -> capability_at w o = Some (p, a, b) -> (a <> UNDEFINED \/ b <> UNDEFINED -> a' = a /\ b' = b) ->
  world_ok (set_object o (PROMISE_CAPABILITY p' a' b') w) waiting running qj /\ extends running w (set_object o (PROMISE_CAPABILITY p' a' b') w).
Proof.
  intros W Hc Hl; assert (Ho : objects w !! o = Some (PROMISE_CAPABILITY p a b)) by (unfold capability_at in Hc; destruct (objects w !! o) as [[]|]; try discriminate; congruence).
  assert (OC : object_change w (set_object o (PROMISE_CAPABILITY p' a' b') w) (thenables qj ++ waiting) o (PROMISE_CAPABILITY p' a' b') []).
  { constructor; try reflexivity.
    - cbn; rewrite app_nil_r; reflexivity.
    - intros e He; inversion He.
    - intros old H; rewrite Ho in H; injection H as <-; cbn; eauto.
    - intros q [H|H]; discriminate. }
  split; [eapply object_change_ok; eauto | eapply object_change_extends; exact OC].
Qed.
