(* ===== verification/PromiseSafe.v ===== *)
(** * No assertion of the promises fails

    Every function of ecma-promise-object.c and ecma-jobqueue.c, started where the invariant
    holds, reaches a state where it holds again ([goes]). *)
From Stdlib Require Import ZArith Lia Bool List.
From stdpp Require Import base gmap list.
From S2P Require Import Prelude JobQueue Promise JobRun PromiseInv PromiseChanges.
Import ListNotations.
#[local] Open Scope Z_scope.
#[local] Open Scope partial_scope.

(** ** The frames *)

Definition use_ok (w : jworld) (u : capability_use) : Prop := match u with FOR_THEN p _ _ => is_promise w p | _ => True end.
Definition species_ok (w : jworld) (u : species_use) : Prop := match u with SPECIES_THEN p _ _ => is_promise w p | SPECIES_FINALLY _ f => callable_without_argument w f = true end.

Definition frame_ok (w : jworld) (f : frame) : Prop :=
  match f with
  | FULFILL p v => is_promise w p /\ exists o, v = OBJECT o
  | REJECT_UNHANDLED p => exists f r l, promise_at w p = Some (f, r, l) /\ pending f = false
  | CREATE_EXECUTOR p => is_promise w p /\ has_resolvers w p
  | NEW_CAPABILITY c u => is_capability w c /\ use_ok w u
  | SPECIES_CONSTRUCTOR u | SPECIES_SYMBOL u => species_ok w u
  | RESOLVE_CALL c => is_capability w c
  | INVOKE_THEN args => args <> []
  | FINALLY_CALL c _ _ => ecma_is_constructor w c = true
  | REACTION_HANDLER jp => exists c h a, job_at w jp = Some (ECMA_JOB_PROMISE_REACTION c h a) /\ complete w c
  | THENABLE_THEN jp => exists p t f, job_at w jp = Some (ECMA_JOB_PROMISE_THENABLE p t f) /\ is_promise w p /\ has_resolvers w p
  | _ => True
  end.

(** A native function was called by something *)
Fixpoint frames_ok (w : jworld) (k : list frame) : Prop :=
  match k with [] => True | f :: k => frame_ok w f /\ (f = PROGRAM \/ k <> []) /\ frames_ok w k end.

Lemma running_sub (f : frame) (k : list frame) (jp : positive) : jp ∈ running_jobs k -> jp ∈ running_jobs (f :: k).
Proof. intros H; change (f :: k) with ([f] ++ k); unfold running_jobs; rewrite omap_app; apply elem_of_app; right; exact H. Qed.

Lemma frame_kept (w w' : jworld) (f : frame) (k : list frame) : extends (running_jobs (f :: k)) w w' -> frame_ok w f -> frame_ok w' f.
Proof.
  intros E; assert (HJ : forall jp, jp ∈ running_jobs [f] -> job_at w' jp = job_at w jp).
  { intros jp H; apply (ext_jobs _ _ _ E); change (f :: k) with ([f] ++ k); unfold running_jobs; rewrite omap_app; apply elem_of_app; left; exact H. }
  assert (HU : forall u, species_ok w u -> species_ok w' u) by (intros []; cbn; [apply (is_promise_kept _ _ _ E) | apply (without_argument_kept _ _ _ E)]).
  destruct f; cbn; auto.
  - intros (A & B); split; [apply (is_promise_kept _ _ _ E), A | exact B].
  - intros (f & r & l & A & B); apply promise_at_object in A; destruct (ext_objects _ _ _ E _ _ A) as (ob & Ho & (f' & r' & l' & -> & L)).
    exists f', r', l'; split; [apply promise_at_object, Ho | apply L, B].
  - intros (A & B); split; [apply (is_promise_kept _ _ _ E), A | apply (has_resolvers_kept _ _ _ E), B].
  - intros (A & B); split; [apply (is_capability_kept _ _ _ E), A|]; destruct use; cbn in B |- *; auto; apply (is_promise_kept _ _ _ E), B.
  - apply (is_capability_kept _ _ _ E).
  - apply (is_constructor_kept _ _ _ E).
  - intros (c & h & a & A & B); exists c, h, a; split; [rewrite HJ; [exact A | left] | apply (complete_kept _ _ _ E), B].
  - intros (p & t & g & A & B & C); exists p, t, g; split; [rewrite HJ; [exact A | left]|]; split; [apply (is_promise_kept _ _ _ E), B | apply (has_resolvers_kept _ _ _ E), C].
Qed.

Lemma frames_kept (w w' : jworld) (k : list frame) : extends (running_jobs k) w w' -> frames_ok w k -> frames_ok w' k.
Proof.
  revert w w'; induction k as [|f k IH]; intros w w' E; [auto|]; cbn [frames_ok]; intros (A & B & C); split; [eapply frame_kept; eauto|]; split; [exact B|].
  eapply IH; [|exact C]; eapply extends_fewer; [apply running_sub | exact E].
Qed.

(** ** States *)

Definition ok (w : jworld) (k : list frame) : Prop := exists qj, world_ok w (fulfilling k) (running_jobs k) qj /\ frames_ok w k.
Definition state_ok (s : state) : Prop := ok (world s) (frames s) /\ (ctl s <> RUN -> frames s <> []).

(** The function reaches a next state; what holds of [w] is kept, and the jobs of [k] still run *)
Definition goes (w : jworld) (k : list frame) (o : option state) : Prop := exists s', o = Some s' /\ state_ok s' /\ extends (running_jobs k) w (world s').

Lemma goes_here (w : jworld) (k : list frame) (c : control) : ok w k -> (c <> RUN -> k <> []) -> goes w k (Some (mk_state w c k)).
Proof. intros H1 H2; eexists; split; [reflexivity|]; split; [split; [exact H1 | exact H2] | apply extends_refl]. Qed.

Lemma goes_after (w w1 : jworld) (k : list frame) (o : option state) : extends (running_jobs k) w w1 -> goes w1 k o -> goes w k o.
Proof. intros E (s' & A & B & C); exists s'; split; [exact A|]; split; [exact B | eapply extends_trans; eauto]. Qed.

Lemma goes_pushed (w : jworld) (f : frame) (k : list frame) (o : option state) : goes w (f :: k) o -> goes w k o.
Proof. intros (s' & A & B & C); exists s'; split; [exact A|]; split; [exact B | eapply extends_fewer; [apply running_sub | exact C]]. Qed.

Definition plain (f : frame) : Prop := fulfilling [f] = [] /\ running_jobs [f] = [].

Lemma plain_waiting (f : frame) (k : list frame) : plain f -> fulfilling (f :: k) = fulfilling k /\ running_jobs (f :: k) = running_jobs k.
Proof. intros [A B]; change (f :: k) with ([f] ++ k); unfold fulfilling, running_jobs in *; rewrite !omap_app, A, B; auto. Qed.

Lemma push_ok (w : jworld) (f : frame) (k : list frame) : plain f -> ok w k -> frame_ok w f -> (f = PROGRAM \/ k <> []) -> ok w (f :: k).
Proof. intros Hp (qj & W & F) Hf Hk; destruct (plain_waiting f k Hp) as [A B]; exists qj; rewrite A, B; split; [exact W|]; cbn; auto. Qed.

Lemma pop_ok (w : jworld) (f : frame) (k : list frame) : plain f -> ok w (f :: k) -> ok w k.
Proof. intros Hp (qj & W & F); destruct (plain_waiting f k Hp) as [A B]; rewrite A, B in W; exists qj; split; [exact W | apply F]. Qed.

Lemma change_ok (w w' : jworld) (k : list frame) (qj : list job) : frames_ok w k -> world_ok w' (fulfilling k) (running_jobs k) qj /\ extends (running_jobs k) w w' -> ok w' k /\ extends (running_jobs k) w w'.
Proof. intros F (W & E); split; [exists qj; split; [exact W | eapply frames_kept; eauto] | exact E]. Qed.

Lemma return_goes (v : value) (w : jworld) (k : list frame) : ok w k -> k <> [] -> goes w k (return_value v k w).
Proof. intros H Hk; apply goes_here; [exact H | intros _; exact Hk]. Qed.
Lemma throw_goes (v : value) (w : jworld) (k : list frame) : ok w k -> k <> [] -> goes w k (throw_value v k w).
Proof. intros H Hk; apply goes_here; [exact H | intros _; exact Hk]. Qed.

(** Objects that need nothing *)
Lemma create_goes (w : jworld) (k : list frame) (ob : object) : ok w k -> object_ok w ob -> match ob with PROMISE _ _ _ | PROMISE_RESOLVE _ | PROMISE_REJECT _ => False | _ => True end ->
  ok (create_object ob w).2 k /\ extends (running_jobs k) w (create_object ob w).2.
Proof. intros (qj & W & F) Ho Hk; eapply change_ok; [exact F|]; apply create_ok; [exact W|]; destruct ob; cbn in *; auto; destruct Hk. Qed.

Lemma type_error_goes (w : jworld) (k : list frame) : ok w k -> k <> [] -> goes w k (ecma_raise_type_error k w).
Proof.
  intros H Hk; destruct (create_goes w k ORDINARY H I I) as (H' & E); unfold ecma_raise_type_error; cbn [create_object] in *; cbn [snd] in *.
  eapply goes_after; [exact E | apply throw_goes; assumption].
Qed.

(** ** Settling *)

(** [p] can be settled now *)
Definition settleable (w : jworld) (settling : list positive) (p : positive) : Prop :=
  exists f r l, promise_at w p = Some (f, r, l) /\ pending f = true /\ (already_resolved f = true \/ ~ usable w p) /\ vm_promises w !! p <> Some true /\ p ∉ settling.

Lemma settle_flags (f : Z) (b : bool) : flags_ok f -> pending f = true ->
  exists f', ecma_promise_set_state f b = Some f' /\ flags_ok f' /\ pending f' = false /\ fulfilled f' = b /\ already_resolved f' = already_resolved f.
Proof.
  intros H; flag_cases H; try discriminate; intros _; destruct b; eexists; (split; [vm_compute; reflexivity|]); (split; [unfold flags_ok; set_solver|]); repeat split.
Qed.

Lemma unhandled_flags (f : Z) : flags_ok f -> pending f = false -> fulfilled f = false ->
  flags_ok (Z.lor f ECMA_PROMISE_UNHANDLED_REJECT) /\ pending (Z.lor f ECMA_PROMISE_UNHANDLED_REJECT) = false /\ fulfilled (Z.lor f ECMA_PROMISE_UNHANDLED_REJECT) = false /\
  already_resolved (Z.lor f ECMA_PROMISE_UNHANDLED_REJECT) = already_resolved f.
Proof. intros H; flag_cases H; try discriminate; intros _ _; (split; [unfold flags_ok, ECMA_PROMISE_UNHANDLED_REJECT; cbn; set_solver|]); repeat split. Qed.

Lemma settle_start (w : jworld) (k : list frame) (qj : list job) (p : positive) :
  world_ok w (fulfilling k) (running_jobs k) qj -> settleable w (thenables qj ++ fulfilling k) p ->
  exists f l rs, promise_at w p = Some (f, UNDEFINED, l) /\ flags_ok f /\ pending f = true /\ decode l = Some rs /\ (already_resolved f = true \/ ~ usable w p) /\ vm_promises w !! p <> Some true /\ p ∉ thenables qj ++ fulfilling k.
Proof.
  intros W (f & r & l & Hp & Hpe & HA & HV & Hs); destruct (wo_promises _ _ _ _ W p f r l Hp) as [P1 P2 P3 P4 P5]; destruct (P2 Hpe) as (-> & rs & D & _).
  exists f, l, rs; auto 10.
Qed.

Lemma promise_at_after (w w2 : jworld) (p : positive) (f : Z) (v : value) (l : list item) (w1 : jworld) :
  w1 = set_object p (PROMISE f v l) w -> objects w2 = objects w1 -> promise_at w2 p = Some (f, v, l).
Proof. intros -> H; apply promise_at_object; rewrite H; apply set_object_at. Qed.

Lemma fulfill_with_goes (w : jworld) (k : list frame) (qj : list job) (p : positive) (v : value) :
  world_ok w (fulfilling k) (running_jobs k) qj -> frames_ok w k -> k <> [] -> settleable w (thenables qj ++ fulfilling k) p -> goes w k (fulfill_with p v k w).
Proof.
  intros W F Hk S; destruct (settle_start w k qj p W S) as (f & l & rs & Hp & Hf & Hpe & D & HA & HV & Hs).
  destruct (settle_flags f true Hf Hpe) as (f' & Hset & Hf' & Hpf & Hfu & Hal); unfold fulfill_with; rewrite Hp, Hset; cbn [ecma_promise_set_result].
  destruct (trigger_added p v false (running_jobs k) l rs qj (set_object p (PROMISE f' v l) w) D) as (w2 & Hw2 & A); [eapply queue_of_same; [| | | apply (wo_queue _ _ _ _ W)]; reflexivity|].
  rewrite Hw2; unfold clear_reactions; rewrite (promise_at_after w w2 p f' v l _ eq_refl (added_objects _ _ _ _ _ _ A)).
  pose proof (settle_ok w w2 (fulfilling k) (running_jobs k) qj p f f' UNDEFINED v l _ rs false W Hp D Hs Hpe Hf' Hpf Hfu ltac:(rewrite Hal; exact HA) HV A) as K.
  destruct (change_ok _ _ _ _ F K) as (K1 & K2); eapply goes_after; [exact K2 | apply return_goes; assumption].
Qed.

Lemma reject_goes (w : jworld) (k : list frame) (qj : list job) (p : positive) (v : value) :
  world_ok w (fulfilling k) (running_jobs k) qj -> frames_ok w k -> k <> [] -> settleable w (thenables qj ++ fulfilling k) p -> goes w k (ecma_reject_promise p v k w).
Proof.
  intros W F Hk S; destruct (settle_start w k qj p W S) as (f & l & rs & Hp & Hf & Hpe & D & HA & HV & Hs).
  destruct (settle_flags f false Hf Hpe) as (f' & Hset & Hf' & Hpf & Hfu & Hal); unfold ecma_reject_promise; rewrite Hp, Hset; cbn [ecma_promise_set_result].
  destruct (trigger_added p v true (running_jobs k) l rs qj (set_object p (PROMISE f' v l) w) D) as (w2 & Hw2 & A); [eapply queue_of_same; [| | | apply (wo_queue _ _ _ _ W)]; reflexivity|].
  rewrite Hw2; pose proof (promise_at_after w w2 p f' v l _ eq_refl (added_objects _ _ _ _ _ _ A)) as Hp2; destruct l as [|i l].
  - injection D as <-; destruct (unhandled_flags f' Hf' Hpf Hfu) as (U1 & U2 & U3 & U4).
    pose proof (settle_ok w w2 (fulfilling k) (running_jobs k) qj p f (Z.lor f' ECMA_PROMISE_UNHANDLED_REJECT) UNDEFINED v [] _ [] true W Hp eq_refl Hs Hpe U1 U2 U3 ltac:(rewrite U4, Hal; exact HA) HV A) as K.
    destruct (change_ok _ _ _ _ F K) as (K1 & K2); eapply goes_after; [exact K2|]; apply goes_pushed with (REJECT_UNHANDLED p); apply goes_here; [|intros H; contradiction].
    apply push_ok; [split; reflexivity | exact K1 | | right; exact Hk]; do 3 eexists; split; [apply promise_at_object, set_object_at | exact U2].
  - unfold clear_reactions; rewrite Hp2.
    pose proof (settle_ok w w2 (fulfilling k) (running_jobs k) qj p f f' UNDEFINED v (i :: l) _ rs true W Hp D Hs Hpe Hf' Hpf Hfu ltac:(rewrite Hal; exact HA) HV A) as K.
    destruct (change_ok _ _ _ _ F K) as (K1 & K2); eapply goes_after; [exact K2 | apply return_goes; assumption].
Qed.

Lemma create_settleable (w : jworld) (settling : list positive) (p : positive) :
  settleable w settling p -> settleable (create_object ORDINARY w).2 settling p.
Proof.
  intros (f & r & l & Hp & Hpe & HA & HV & Hs); exists f, r, l; split; [|split; [exact Hpe|split; [|auto]]].
  - apply promise_at_object; apply promise_at_object in Hp; cbn; rewrite lookup_insert_ne; [exact Hp|]; intros <-; rewrite fresh_object_free in Hp; discriminate.
  - destruct HA as [HA|HA]; [left; exact HA | right; intros H; apply HA]; destruct H as [(x & Hx)|H]; [left; cbn in Hx | right; exact H].
    destruct (decide (x = fresh_object w)) as [->|Hne]; [rewrite lookup_insert_eq in Hx; destruct Hx; discriminate | rewrite lookup_insert_ne in Hx by congruence; exists x; exact Hx].
Qed.

Lemma fulfill_goes (w : jworld) (k : list frame) (qj : list job) (p : positive) (v : value) :
  world_ok w (fulfilling k) (running_jobs k) qj -> frames_ok w k -> k <> [] -> settleable w (thenables qj ++ fulfilling k) p -> goes w k (ecma_fulfill_promise p v k w).
Proof.
  intros W F Hk S; pose proof S as (f & r & l & Hp & Hpe & HA & HV & Hs); unfold ecma_fulfill_promise; rewrite Hp; unfold pending in Hpe; rewrite Hpe; cbn [negb].
  destruct (decide (OBJECT p = v)) as [Hv|Hne].
  - subst v; destruct (create_ok w (fulfilling k) (running_jobs k) qj ORDINARY W I) as (W1 & E1); pose proof (create_settleable _ _ _ S) as S1.
    cbn [create_object] in *; cbn [snd] in *; eapply goes_after; [exact E1|]; eapply reject_goes; [exact W1 | eapply frames_kept; eauto | exact Hk | exact S1].
  - destruct v; try (eapply fulfill_with_goes; eauto; fail).
    apply goes_pushed with (FULFILL p (OBJECT o)); apply goes_here; [|intros H; contradiction]; exists qj; split; [|split; [split; [eapply promise_at_is_promise; exact Hp | eauto] | split; [right; exact Hk | exact F]]].
    change (world_ok w (p :: fulfilling k) (running_jobs k) qj); eapply waiting_more; eauto.
Qed.

(** The frame of ecma_fulfill_promise returns *)
Lemma after_fulfill_goes (w : jworld) (k : list frame) (p : positive) (v : value) (c : completion) : ok w (FULFILL p v :: k) -> goes w k (after_fulfill p v c k w).
Proof.
  intros (qj & W & (Hp & o & ->) & Hk & F); destruct Hk as [Hk|Hk]; [discriminate|]; change (world_ok w (p :: fulfilling k) (running_jobs k) qj) in W.
  pose proof (waiting_weaken _ _ _ _ _ W) as W1; pose proof (waiting_once _ _ _ _ _ W) as Hs.
  destruct (is_promise_at _ _ Hp) as (f & r & l & Hat & _); destruct (waiting_facts _ _ _ _ p f r l W ltac:(apply elem_of_app; right; left) Hat) as (Hpe & HA & HV).
  assert (S : settleable w (thenables qj ++ fulfilling k) p) by (exists f, r, l; auto 10).
  destruct c as [th|e]; cbn [after_fulfill]; [|eapply reject_goes; eauto]; destruct (ecma_op_is_callable w th) eqn:Hc; [|eapply fulfill_with_goes; eauto].
  unfold ecma_enqueue_promise_resolve_thenable_job; rewrite Hp, Hc; cbn [andb].
  destruct (ecma_enqueue_job_added None (ECMA_JOB_PROMISE_THENABLE p (OBJECT o) th) (running_jobs k) qj w (wo_queue _ _ _ _ W)) as (w' & -> & A).
  destruct (change_ok w w' k _ F (enqueue_ok w w' (fulfilling k) (running_jobs k) qj (ECMA_JOB_PROMISE_THENABLE p (OBJECT o) th) W A (conj Hp Hc))) as (K1 & K2).
  eapply goes_after; [exact K2 | apply return_goes; assumption].
Qed.

(** With the check *)
Lemma guard_start (w : jworld) (k : list frame) (qj : list job) (p : positive) (f : Z) (r : value) (l : list item) :
  world_ok w (fulfilling k) (running_jobs k) qj -> frames_ok w k -> promise_at w p = Some (f, r, l) -> usable w p -> already_resolved f = false ->
  let w' := set_object p (PROMISE (Z.lor f ECMA_PROMISE_ALREADY_RESOLVED) r l) w in
  world_ok w' (fulfilling k) (running_jobs k) qj /\ extends (running_jobs k) w w' /\ settleable w' (thenables qj ++ fulfilling k) p.
Proof.
  intros W F Hp HU HA; destruct (wo_promises _ _ _ _ W p f r l Hp) as [P1 P2 P3 P4 P5]; destruct (P4 HA HU) as (Hpe & Hs).
  assert (Hf' : flags_ok (Z.lor f ECMA_PROMISE_ALREADY_RESOLVED) /\ pending (Z.lor f ECMA_PROMISE_ALREADY_RESOLVED) = pending f /\ fulfilled (Z.lor f ECMA_PROMISE_ALREADY_RESOLVED) = fulfilled f /\ already_resolved (Z.lor f ECMA_PROMISE_ALREADY_RESOLVED) = true).
  { clear -P1; flag_cases P1; (split; [unfold flags_ok, ECMA_PROMISE_ALREADY_RESOLVED; cbn; set_solver|]); repeat split. }
  destruct Hf' as (F1 & F2 & F3 & F4).
  assert (HV : vm_promises w !! p <> Some true).
  { destruct HU as [(x & Hx)|HU]; [|congruence]; destruct Hx as [Hx|Hx]; apply (wo_objects _ _ _ _ W) in Hx; apply Hx. }
  pose proof (set_flags_ok w (fulfilling k) (running_jobs k) qj p f (Z.lor f ECMA_PROMISE_ALREADY_RESOLVED) r l W Hp F1 F2 F3 (fun _ => or_introl HA) (or_intror HV)) as (W' & E').
  split; [exact W'|]; split; [exact E'|]; do 3 eexists; split; [apply promise_at_object, set_object_at|]; rewrite F2, F4; auto 10.
Qed.

Lemma reject_with_checks_goes (w : jworld) (k : list frame) (p : positive) (v : value) : ok w k -> k <> [] -> is_promise w p -> usable w p -> goes w k (ecma_reject_promise_with_checks p v k w).
Proof.
  intros (qj & W & F) Hk Hp HU; destruct (is_promise_at _ _ Hp) as (f & r & l & Hat & _); unfold ecma_reject_promise_with_checks; rewrite Hat.
  destruct (ecma_is_resolver_already_called f) eqn:HA; [apply return_goes; [exists qj; auto | exact Hk]|].
  destruct (guard_start w k qj p f r l W F Hat HU HA) as (W' & E' & S'); eapply goes_after; [exact E' | eapply reject_goes; eauto; eapply frames_kept; eauto].
Qed.

Lemma fulfill_with_checks_goes (w : jworld) (k : list frame) (p : positive) (v : value) : ok w k -> k <> [] -> is_promise w p -> usable w p -> goes w k (ecma_fulfill_promise_with_checks p v k w).
Proof.
  intros (qj & W & F) Hk Hp HU; destruct (is_promise_at _ _ Hp) as (f & r & l & Hat & _); unfold ecma_fulfill_promise_with_checks; rewrite Hat.
  destruct (ecma_is_resolver_already_called f) eqn:HA; [apply return_goes; [exists qj; auto | exact Hk]|].
  destruct (guard_start w k qj p f r l W F Hat HU HA) as (W' & E' & S'); eapply goes_after; [exact E' | eapply fulfill_goes; eauto; eapply frames_kept; eauto].
Qed.
