(* ===== verification/PromiseCalls.v ===== *)
(** * The functions of promises keep the invariant

    Calls, capabilities, then and finally, the jobs; [resume] and [act]. *)
From Stdlib Require Import ZArith Lia Bool List.
From stdpp Require Import base gmap list.
From S2P Require Import Prelude JobQueue Promise JobRun PromiseInv PromiseChanges PromiseSafe.
Import ListNotations.
#[local] Open Scope Z_scope.
#[local] Open Scope partial_scope.

(** ** Calls *)

(** What a function may be called with *)
Definition may_call (w : jworld) (f : value) (args : list value) : Prop := callable w f /\ (args <> [] \/ callable_without_argument w f = true).

Lemma may_call_arguments (w : jworld) (f a : value) (args : list value) : callable w f -> may_call w f (a :: args).
Proof. intros H; split; [exact H | left; discriminate]. Qed.
#[export] Hint Resolve may_call_arguments : core.

Lemma may_call_kept (running : list positive) (w w' : jworld) (f : value) (args : list value) : extends running w w' -> may_call w f args -> may_call w' f args.
Proof. intros E [A [B|B]]; (split; [apply (callable_kept _ _ _ E), A|]); [left; exact B | right; apply (without_argument_kept _ _ _ E), B]. Qed.

Lemma executor_goes (w : jworld) (k : list frame) (c : positive) (args : list value) : ok w k -> k <> [] -> is_capability w c -> goes w k (ecma_op_get_capabilities_executor_cb c args k w).
Proof.
  intros H Hk [[[p a] b] Hc]; unfold ecma_op_get_capabilities_executor_cb; pose proof Hc as Ho; unfold capability_at in Ho; destruct (objects w !! c) as [[]|] eqn:E; try discriminate; injection Ho as -> -> ->.
  destruct a, b; try (apply type_error_goes; assumption); destruct H as (qj & W & F).
  destruct (change_ok _ _ k _ F (set_capability_ok w _ _ qj c p p UNDEFINED (argument args 0) UNDEFINED (argument args 1) W Hc ltac:(intros [K|K]; contradiction))) as (K1 & K2).
  eapply goes_after; [exact K2 | apply return_goes; assumption].
Qed.

Lemma usable_resolver (w : jworld) (k : list frame) (p : positive) : ok w k -> has_resolvers w p -> is_promise w p /\ usable w p.
Proof. intros (qj & W & F) H; split; [|left; exact H]; destruct H as (x & [Hx|Hx]); apply (wo_objects _ _ _ _ W) in Hx; apply Hx. Qed.

Lemma call_function_goes (cf : value -> value -> value -> bool -> list frame -> jworld -> option state) (w : jworld) (k : list frame) (f : value) (args : list value) :
  ok w k -> k <> [] -> may_call w f args ->
  (forall c g a args' b, args = a :: args' -> ecma_is_constructor w c = true -> callable w g -> callable_without_argument w g = true -> goes w k (cf c g a b k w)) ->
  goes w k (call_function cf f args k w).
Proof.
  intros H Hk [Hc Ha] Hcf; unfold callable, ecma_op_is_callable in Hc; unfold call_function; destruct f as [| | | |o|]; try discriminate; cbn [object_at] in Hc |- *.
  destruct (objects w !! o) as [ob|] eqn:Ho; [|discriminate]; pose proof H as (qj & W & F); pose proof (wo_objects _ _ _ _ W o ob Ho) as K; destruct ob; try discriminate; cbn in K.
  - destruct (usable_resolver w k promise H ltac:(exists o; auto)); apply fulfill_with_checks_goes; assumption.
  - destruct (usable_resolver w k promise H ltac:(exists o; auto)); apply reject_with_checks_goes; assumption.
  - apply executor_goes; assumption.
  - destruct args as [|a args]; [exfalso; destruct Ha as [Ha|Ha]; [contradiction | cbn in Ha; rewrite Ho in Ha; discriminate]|]; eapply Hcf; [reflexivity | apply K ..].
  - destruct args as [|a args]; [exfalso; destruct Ha as [Ha|Ha]; [contradiction | cbn in Ha; rewrite Ho in Ha; discriminate]|]; eapply Hcf; [reflexivity | apply K ..].
  - apply return_goes; assumption.
  - apply throw_goes; assumption.
  - apply type_error_goes; assumption.
  - apply goes_here; [exact H | intros _; exact Hk].
Qed.

Lemma call_goes (w : jworld) (k : list frame) (f : value) (args : list value) : ok w k -> k <> [] -> may_call w f args -> goes w k (ecma_op_function_call f args k w).
Proof.
  intros H Hk Hc; apply call_function_goes; auto; intros c g a args' b _ C1 C2 C3; unfold ecma_promise_then_catch_finally_helper; unfold callable in C2; rewrite C2.
  apply goes_pushed with (FINALLY_CALL c a b); apply call_function_goes; [|discriminate | split; [exact C2 | right; exact C3] | discriminate].
  apply push_ok; [split; reflexivity | exact H | exact C1 | right; exact Hk].
Qed.

Lemma call_with_goes (w : jworld) (f0 : frame) (k : list frame) (f : value) (args : list value) :
  plain f0 -> ok w k -> frame_ok w f0 -> (f0 = PROGRAM \/ k <> []) -> may_call w f args -> goes w k (ecma_op_function_call f args (f0 :: k) w).
Proof. intros Hp H Hf Hk Hc; apply goes_pushed with f0; apply call_goes; [apply push_ok; assumption | discriminate | exact Hc]. Qed.

(** The program runs in a new frame *)
Lemma run_goes (w : jworld) (f : frame) (k : list frame) : plain f -> ok w k -> frame_ok w f -> k <> [] -> goes w k (Some (mk_state w RUN (f :: k))).
Proof. intros Hp H Hf Hk; apply goes_pushed with f; apply goes_here; [apply push_ok; auto | intros K; contradiction]. Qed.

Lemma invoke_then_goes (w : jworld) (k : list frame) (v : value) (args : list value) : ok w k -> k <> [] -> args <> [] -> goes w k (ecma_op_invoke_then v args k w).
Proof. intros H Hk Ha; destruct v; cbn [ecma_op_invoke_then]; (apply type_error_goes; assumption) || (apply run_goes; [split; reflexivity | assumption | exact Ha | exact Hk]). Qed.

Lemma after_invoke_then_goes (w : jworld) (k : list frame) (args : list value) (c : completion) : ok w k -> k <> [] -> args <> [] -> goes w k (after_invoke_then args c k w).
Proof.
  intros H Hk Ha; destruct c as [f|e]; cbn [after_invoke_then]; [|apply throw_goes; assumption]; destruct (ecma_op_is_callable w f) eqn:Hc; [|apply type_error_goes; assumption].
  apply call_goes; [exact H | exact Hk | split; [exact Hc | left; exact Ha]].
Qed.

(** ** Creating promises *)

Lemma may_resolve_kept (w : jworld) (settling : list positive) (p q : positive) :
  may_resolve w settling p -> may_resolve (create_object (PROMISE_RESOLVE q) w).2 settling p.
Proof.
  intros (A & B & C); assert (Hne : p <> fresh_object w) by (intros ->; apply fresh_no_promise in A; destruct A).
  assert (Hat : promise_at (create_object (PROMISE_RESOLVE q) w).2 p = promise_at w p) by (unfold promise_at; cbn; rewrite lookup_insert_ne by congruence; reflexivity).
  split; [|split; [exact B|]]; [destruct (is_promise_at _ _ A) as (f & r & l & Hp & _); rewrite <- Hat in Hp; eapply promise_at_is_promise; exact Hp | intros f r l Hp; rewrite Hat in Hp; apply (C f r l Hp)].
Qed.

(** Resolving functions are made, then the executor is called in frames that need them *)
Lemma run_executor_goes (w : jworld) (k : list frame) (qj : list job) (p : positive) (executor : value) :
  world_ok w (fulfilling k) (running_jobs k) qj -> k <> [] -> may_resolve w (thenables qj ++ fulfilling k) p -> callable w executor ->
  (forall w', extends (running_jobs k) w w' -> is_promise w' p -> has_resolvers w' p -> frames_ok w' k) ->
  goes w k (ecma_promise_run_executor p executor k w).
Proof.
  intros W Hk Hm Hc Hf; unfold ecma_promise_run_executor; destruct (create_ok w _ _ qj (PROMISE_RESOLVE p) W Hm) as (W1 & E1); pose proof (may_resolve_kept w _ p p Hm) as Hm1.
  set (w1 := (create_object (PROMISE_RESOLVE p) w).2) in *; destruct (create_ok w1 _ _ qj (PROMISE_REJECT p) W1 Hm1) as (W2 & E2).
  assert (Hr : has_resolvers (create_object (PROMISE_REJECT p) w1).2 p) by (exists (fresh_object w1); right; apply set_object_at).
  pose proof (extends_trans _ _ _ _ E1 E2) as E; change (goes w k (ecma_op_function_call executor [OBJECT (fresh_object w); OBJECT (fresh_object w1)] k (create_object (PROMISE_REJECT p) w1).2)).
  eapply goes_after; [exact E|]; apply call_goes; [|exact Hk | apply may_call_arguments, (callable_kept _ _ _ E), Hc].
  exists qj; split; [exact W2|]; apply Hf; [exact E | apply (is_promise_kept _ _ _ E), Hm | exact Hr].
Qed.

Lemma create_promise_goes (w : jworld) (k : list frame) (executor : option value) :
  ok w k -> k <> [] -> (forall v, executor = Some v -> callable w v) -> goes w k (ecma_op_create_promise_object executor k w).
Proof.
  intros (qj & W & F) Hk Hc; destruct (create_promise_ok w _ _ qj W) as (W1 & E1 & Hp & Hs & Hv & Hr); unfold ecma_op_create_promise_object; cbn [create_object] in *; cbn [snd] in *.
  set (p := fresh_object w) in *; set (w1 := set_object p _ w) in *; eapply goes_after; [exact E1|]; destruct executor as [v|]; [|apply return_goes; [exists qj; split; [exact W1 | eapply frames_kept; eauto] | exact Hk]].
  pose proof (callable_kept _ _ _ E1 v (Hc v eq_refl)) as Hcv; change (ecma_op_is_callable w1 v = true) in Hcv; rewrite Hcv; apply goes_pushed with (CREATE_EXECUTOR p).
  assert (Hip : is_promise w1 p) by (eapply promise_at_is_promise; exact Hp).
  apply run_executor_goes with qj; [exact W1 | discriminate | | exact Hcv |].
  - split; [exact Hip|]; split; [intros K; change (vm_promises w1 !! p = None) in Hv; congruence|]; intros f r l Hat _; change (promise_at w1 p = Some (1, UNDEFINED, [])) in Hp; rewrite Hp in Hat; injection Hat as <- <- <-; split; [reflexivity | exact Hs].
  - intros w' E' Hip' Hr'; split; [split; assumption|]; split; [right; exact Hk|]; eapply frames_kept; [|exact F]; eapply extends_trans; [exact E1|]; eapply extends_fewer; [apply running_sub | exact E'].
Qed.

Lemma after_executor_goes (w : jworld) (k : list frame) (p : positive) (c : completion) : ok w k -> k <> [] -> is_promise w p -> has_resolvers w p -> goes w k (after_executor p c k w).
Proof.
  intros H Hk Hp Hr; destruct c as [v|e]; cbn [after_executor]; [apply return_goes; assumption|].
  apply goes_pushed with (CREATE_REJECT p); apply reject_with_checks_goes; [apply push_ok; [split; reflexivity | exact H | exact I | right; exact Hk] | discriminate | exact Hp | left; exact Hr].
Qed.

Lemma new_capability_goes (w : jworld) (k : list frame) (constructor : value) (use : capability_use) : ok w k -> k <> [] -> use_ok w use -> goes w k (ecma_promise_new_capability constructor use k w).
Proof.
  intros H Hk Hu; unfold ecma_promise_new_capability; destruct (ecma_is_constructor w constructor) eqn:Hc; cbn [negb]; [|apply type_error_goes; assumption].
  destruct (create_goes w k (PROMISE_CAPABILITY UNDEFINED UNDEFINED UNDEFINED) H I I) as (H1 & E1); set (w1 := (create_object (PROMISE_CAPABILITY UNDEFINED UNDEFINED UNDEFINED) w).2) in *.
  assert (Hcap : is_capability w1 (fresh_object w)) by (unfold is_capability, capability_at, w1; cbn [create_object snd]; rewrite set_object_at; eauto).
  destruct (create_goes w1 k (PROMISE_CAPABILITY_EXECUTOR (fresh_object w)) H1 Hcap I) as (H2 & E2); set (w2 := (create_object (PROMISE_CAPABILITY_EXECUTOR (fresh_object w)) w1).2) in *.
  pose proof (extends_trans _ _ _ _ E1 E2) as E.
  assert (Hfo : frame_ok w2 (NEW_CAPABILITY (fresh_object w) use)) by (split; [apply (is_capability_kept _ _ _ E2), Hcap | destruct use; cbn in Hu |- *; auto; apply (is_promise_kept _ _ _ E), Hu]).
  assert (Hcal : callable w2 (OBJECT (fresh_object w1))) by (unfold callable, ecma_op_is_callable, w2; cbn [create_object snd object_at]; rewrite set_object_at; reflexivity).
  change (goes w k (if decide (constructor = OBJECT ECMA_BUILTIN_ID_PROMISE) then ecma_op_create_promise_object (Some (OBJECT (fresh_object w1))) (NEW_CAPABILITY (fresh_object w) use :: k) w2
                    else Some (mk_state w2 RUN (NEW_CAPABILITY (fresh_object w) use :: k)))).
  eapply goes_after; [exact E|]; destruct (decide _) as [Hd|Hd]; [|apply run_goes; [split; reflexivity | exact H2 | exact Hfo | exact Hk]].
  apply goes_pushed with (NEW_CAPABILITY (fresh_object w) use); apply create_promise_goes; [apply push_ok; [split; reflexivity | exact H2 | exact Hfo | right; exact Hk] | discriminate | intros v [= <-]; exact Hcal].
Qed.

(** ** Reactions *)

Lemma handled_flags (f : Z) : flags_ok f -> pending f = false ->
  let f' := Z.land f (Z.lnot ECMA_PROMISE_UNHANDLED_REJECT) in flags_ok f' /\ pending f' = pending f /\ fulfilled f' = fulfilled f /\ already_resolved f' = already_resolved f.
Proof. intros H; flag_cases H; try discriminate; intros _; (split; [unfold flags_ok; vm_compute Z.land; set_solver|]); repeat split. Qed.

(** A reaction of a settled promise is scheduled; a rejection is handled *)
Lemma scheduled_ok (w w' : jworld) (waiting running : list positive) (qj : list job) (p : positive) (f : Z) (r : value) (l : list item) (rx : reaction) :
  world_ok w waiting running qj -> promise_at w p = Some (f, r, l) -> pending f = false -> reaction_ok w rx ->
  added (Some p) [reaction_job (negb (fulfilled f)) r rx] running qj (record (REGISTERED p rx) w) w' ->
  world_ok (set_object p (PROMISE (Z.land f (Z.lnot ECMA_PROMISE_UNHANDLED_REJECT)) r l) w') waiting running (qj ++ [reaction_job (negb (fulfilled f)) r rx]) /\
  extends running w (set_object p (PROMISE (Z.land f (Z.lnot ECMA_PROMISE_UNHANDLED_REJECT)) r l) w').
Proof.
  intros W Hp Hpe Hrx A; destruct (react_ok w w' waiting running qj p f r l rx W Hp Hpe Hrx A) as (W1 & E1).
  destruct (handled_flags f (po_flags _ _ _ _ _ _ (wo_promises _ _ _ _ W p f r l Hp)) Hpe) as (F1 & F2 & F3 & F4).
  assert (Hp1 : promise_at w' p = Some (f, r, l)) by (unfold promise_at in *; rewrite (added_objects _ _ _ _ _ _ A); exact Hp).
  destruct (set_flags_ok w' waiting running _ p f _ r l W1 Hp1 F1 F2 F3) as (W2 & E2); [rewrite F4; auto | left; exact F4|].
  split; [exact W2 | eapply extends_trans; eauto].
Qed.

Lemma enqueue_after_register (w : jworld) (k : list frame) (qj : list job) (p : positive) (rx : reaction) (j : job) :
  world_ok w (fulfilling k) (running_jobs k) qj ->
  exists w', ecma_enqueue_job (Some p) j (record (REGISTERED p rx) w) = Some w' /\ added (Some p) [j] (running_jobs k) qj (record (REGISTERED p rx) w) w'.
Proof. intros W; apply ecma_enqueue_job_added; eapply queue_of_same; [| | | apply (wo_queue _ _ _ _ W)]; reflexivity. Qed.

Lemma perform_then_ok (w : jworld) (k : list frame) (p capability : positive) (a b : value) :
  ok w k -> is_promise w p -> complete w capability -> exists w', ecma_promise_perform_then p a b capability w = Some w' /\ ok w' k /\ extends (running_jobs k) w w'.
Proof.
  intros (qj & W & F) Hp Hc; destruct (is_promise_at _ _ Hp) as (f & r & l & Hat & _); unfold ecma_promise_perform_then; rewrite Hat.
  set (a' := if ecma_op_is_callable w a then a else TRUE); set (b' := if ecma_op_is_callable w b then b else FALSE).
  assert (Ha : a' = TRUE \/ callable w a') by (unfold a', callable; destruct (ecma_op_is_callable w a) eqn:E; auto).
  assert (Hb : b' = FALSE \/ callable w b') by (unfold b', callable; destruct (ecma_op_is_callable w b) eqn:E; auto).
  set (rx := ON_SETTLE capability a' b'); assert (Hrx : reaction_ok w rx) by (cbn; auto).
  fold (pending f); fold (fulfilled f); destruct (pending f) eqn:Hpe.
  - eexists; split; [reflexivity|]; eapply change_ok; [exact F|]; apply (register_ok w _ _ qj p f r l _ rx W Hat Hpe); [|exact Hrx].
    unfold rx; destruct (decide (a' = TRUE)) as [->|Na], (decide (b' = FALSE)) as [->|Nb]; cbn [bool_decide negb]; rewrite ?bool_decide_eq_true_2, ?bool_decide_eq_false_2 by (reflexivity || assumption); reflexivity.
  - destruct (enqueue_after_register w k qj p rx (reaction_job (negb (fulfilled f)) r rx) W) as (w' & Hw' & A); destruct (fulfilled f) eqn:Hfu.
    + exists w'; split; [exact Hw'|]; eapply change_ok; [exact F|]; pose proof (react_ok w w' _ _ qj p f r l rx W Hat Hpe Hrx) as K; rewrite Hfu in K; exact (K A).
    + change (ecma_enqueue_promise_reaction_job p capability b' r (record (REGISTERED p rx) w) = Some w') in Hw'; rewrite Hw'; eexists; split; [reflexivity|]; eapply change_ok; [exact F|].
      pose proof (scheduled_ok w w' _ _ qj p f r l rx W Hat Hpe Hrx) as K; rewrite Hfu in K; exact (K A).
Qed.

Lemma async_then_ok (w : jworld) (k : list frame) (p executable : positive) :
  ok w k -> is_promise w p -> exists w', ecma_promise_async_then p executable w = Some w' /\ ok w' k /\ extends (running_jobs k) w w'.
Proof.
  intros (qj & W & F) Hp; destruct (is_promise_at _ _ Hp) as (f & r & l & Hat & _); unfold ecma_promise_async_then; rewrite Hat; fold (pending f); fold (fulfilled f).
  set (rx := ON_AWAIT executable); destruct (pending f) eqn:Hpe.
  - eexists; split; [reflexivity|]; eapply change_ok; [exact F|]; apply (register_ok w _ _ qj p f r l _ rx W Hat Hpe); [reflexivity | exact I].
  - destruct (enqueue_after_register w k qj p rx (reaction_job (negb (fulfilled f)) r rx) W) as (w' & Hw' & A).
    change (ecma_enqueue_promise_async_reaction_job p executable r (negb (fulfilled f)) (record (REGISTERED p rx) w) = Some w') in Hw'; rewrite Hw'; eexists; split; [reflexivity|]; eapply change_ok; [exact F|].
    exact (scheduled_ok w w' _ _ qj p f r l rx W Hat Hpe I A).
Qed.

(** ** Capabilities *)

Lemma after_capability_goes (w : jworld) (k : list frame) (c : positive) (use : capability_use) (cm : completion) :
  ok w k -> k <> [] -> is_capability w c -> use_ok w use -> goes w k (after_capability c use cm k w).
Proof.
  intros H Hk [[[p0 a] b] Hc] Hu; destruct cm as [promise|e]; cbn [after_capability]; [|apply throw_goes; assumption]; rewrite Hc.
  destruct (ecma_op_is_callable w a) eqn:Ha; cbn [negb]; [|apply type_error_goes; assumption]; destruct (ecma_op_is_callable w b) eqn:Hb; cbn [negb]; [|apply type_error_goes; assumption].
  destruct H as (qj & W & F); destruct (change_ok _ _ k qj F (set_capability_ok w _ _ qj c p0 promise a a b b W Hc ltac:(auto))) as (H1 & E1); set (w1 := set_object c (PROMISE_CAPABILITY promise a b) w) in *.
  assert (Hcap : capability_at w1 c = Some (promise, a, b)) by (unfold capability_at, w1; rewrite set_object_at; reflexivity).
  assert (Hcom : complete w1 c) by (exists promise, a, b; split; [exact Hcap|]; split; apply (callable_kept _ _ _ E1); assumption).
  eapply goes_after; [exact E1|]; destruct use as [p x y|v is_resolve|].
  - destruct (perform_then_ok w1 k p c x y H1 (is_promise_kept _ _ _ E1 p Hu) Hcom) as (w2 & -> & H2 & E2); eapply goes_after; [exact E2 | apply return_goes; assumption].
  - apply call_with_goes; [split; reflexivity | exact H1 | exists (promise, a, b); exact Hcap | right; exact Hk | apply may_call_arguments, (callable_kept _ _ _ E1); destruct is_resolve; assumption].
  - destruct (create_goes w1 k ORDINARY H1 I I) as (H2 & E2); cbn [create_object]; cbn [create_object snd] in H2, E2; eapply goes_after; [exact E2|]; apply run_goes; [split; reflexivity | exact H2 | exact I | exact Hk].
Qed.

Lemma reject_or_resolve_goes (w : jworld) (k : list frame) (this_arg v : value) (is_resolve : bool) : ok w k -> k <> [] -> goes w k (ecma_promise_reject_or_resolve this_arg v is_resolve k w).
Proof.
  intros H Hk; destruct this_arg; cbn [ecma_promise_reject_or_resolve]; try (apply type_error_goes; assumption).
  destruct (is_resolve && _)%bool; [apply run_goes; [split; reflexivity | exact H | exact I | exact Hk] | apply new_capability_goes; [exact H | exact Hk | exact I]].
Qed.

Lemma after_constructor_goes (w : jworld) (k : list frame) (this_arg v : value) (c : completion) : ok w k -> k <> [] -> goes w k (after_constructor this_arg v c k w).
Proof.
  intros H Hk; destruct c as [c|e]; cbn [after_constructor]; [|apply throw_goes; assumption]; destruct (decide _); [apply return_goes; assumption | apply new_capability_goes; [exact H | exact Hk | exact I]].
Qed.

Lemma after_resolve_call_goes (w : jworld) (k : list frame) (c : positive) (cm : completion) : ok w k -> k <> [] -> is_capability w c -> goes w k (after_resolve_call c cm k w).
Proof. intros H Hk [[[p a] b] Hc]; destruct cm as [v|e]; cbn [after_resolve_call]; [rewrite Hc; apply return_goes; assumption | apply throw_goes; assumption]. Qed.

Lemma after_put_goes (w : jworld) (k : list frame) (o : positive) (n : nat) : ok w k -> k <> [] -> goes w k (after_put o n k w).
Proof. intros H Hk; destruct n as [|n]; cbn [after_put]; [apply return_goes; assumption | apply run_goes; [split; reflexivity | exact H | exact I | exact Hk]]. Qed.

(** ** then and finally *)

Lemma then_goes (w : jworld) (k : list frame) (promise a b : value) : ok w k -> k <> [] -> goes w k (ecma_promise_then promise a b k w).
Proof.
  intros H Hk; destruct promise; cbn [ecma_promise_then]; try (apply type_error_goes; assumption).
  destruct (ecma_is_promise w o) eqn:Hp; [apply run_goes; [split; reflexivity | exact H | exact Hp | exact Hk] | apply type_error_goes; assumption].
Qed.

Lemma finally_goes (w : jworld) (k : list frame) (promise f : value) : ok w k -> k <> [] -> callable_without_argument w f = true -> goes w k (ecma_promise_finally promise f k w).
Proof. intros H Hk Hf; destruct promise; cbn [ecma_promise_finally]; try (apply type_error_goes; assumption); apply run_goes; [split; reflexivity | exact H | exact Hf | exact Hk]. Qed.

Lemma after_species_goes (w : jworld) (k : list frame) (use : species_use) (species : value) :
  ok w k -> k <> [] -> species_ok w use -> ecma_is_constructor w species = true -> goes w k (after_species use species k w).
Proof.
  intros H Hk Hu Hc; destruct use as [p a b|p f]; cbn [after_species species_ok] in *; [apply new_capability_goes; assumption|]; rewrite Hc; cbn [negb].
  destruct (ecma_op_is_callable w f) eqn:Hf; cbn [negb]; [|apply invoke_then_goes; [exact H | exact Hk | discriminate]].
  destruct (create_goes w k (PROMISE_THEN_FINALLY species f) H) as (H1 & E1); [cbn; auto | exact I|].
  set (w1 := (create_object (PROMISE_THEN_FINALLY species f) w).2) in *; destruct (create_goes w1 k (PROMISE_CATCH_FINALLY species f) H1) as (H2 & E2).
  { cbn; split; [apply (is_constructor_kept _ _ _ E1), Hc|]; split; [apply (callable_kept _ _ _ E1), Hf | apply (without_argument_kept _ _ _ E1), Hu]. }
  { exact I. }
  eapply goes_after; [eapply extends_trans; [exact E1 | exact E2]|]; apply invoke_then_goes; [exact H2 | exact Hk | discriminate].
Qed.

Lemma promise_constructor (w : jworld) (k : list frame) : ok w k -> ecma_is_constructor w (OBJECT ECMA_BUILTIN_ID_PROMISE) = true.
Proof. intros (qj & W & _); unfold ecma_is_constructor, object_at; rewrite (wo_constructor _ _ _ _ W); reflexivity. Qed.

Lemma after_species_constructor_goes (w : jworld) (k : list frame) (use : species_use) (c : completion) : ok w k -> k <> [] -> species_ok w use -> goes w k (after_species_constructor use c k w).
Proof.
  intros H Hk Hu; destruct c as [[]|e]; cbn [after_species_constructor]; try (apply type_error_goes; assumption); [| |apply throw_goes; assumption].
  - apply after_species_goes; [exact H | exact Hk | exact Hu | eapply promise_constructor; exact H].
  - apply run_goes; [split; reflexivity | exact H | exact Hu | exact Hk].
Qed.

Lemma after_species_symbol_goes (w : jworld) (k : list frame) (use : species_use) (c : completion) : ok w k -> k <> [] -> species_ok w use -> goes w k (after_species_symbol use c k w).
Proof.
  intros H Hk Hu; assert (HP : goes w k (after_species use (OBJECT ECMA_BUILTIN_ID_PROMISE) k w)) by (apply after_species_goes; [exact H | exact Hk | exact Hu | eapply promise_constructor; exact H]).
  destruct c as [v|e]; cbn [after_species_symbol]; [|apply throw_goes; assumption].
  destruct v; try exact HP; (destruct (ecma_is_constructor w _) eqn:Hc; [apply after_species_goes; assumption | apply type_error_goes; assumption]).
Qed.

Lemma after_on_finally_goes (w : jworld) (k : list frame) (constructor arg : value) (throws : bool) (c : completion) :
  ok w k -> k <> [] -> ecma_is_constructor w constructor = true -> goes w k (after_on_finally constructor arg throws c k w).
Proof.
  intros H Hk Hc; destruct c as [v|e]; cbn [after_on_finally]; [rewrite Hc | apply throw_goes; assumption].
  apply goes_pushed with (FINALLY_PROMISE arg throws); apply reject_or_resolve_goes; [apply push_ok; [split; reflexivity | exact H | exact I | right; exact Hk] | discriminate].
Qed.

Lemma after_finally_promise_goes (w : jworld) (k : list frame) (arg : value) (throws : bool) (c : completion) : ok w k -> k <> [] -> goes w k (after_finally_promise arg throws c k w).
Proof.
  intros H Hk; destruct c as [promise|e]; cbn [after_finally_promise]; [|apply throw_goes; assumption].
  destruct (create_goes w k (if throws then VALUE_THROWER arg else VALUE_THUNK arg) H) as (H1 & E1); [destruct throws; exact I | destruct throws; exact I|].
  cbn [create_object]; cbn [create_object snd] in H1, E1; eapply goes_after; [exact E1|]; apply invoke_then_goes; [exact H1 | exact Hk | discriminate].
Qed.

(** ** Jobs *)

(** The frame of a job that runs *)
Definition job_frame (f : frame) (job_p : positive) : Prop := fulfilling [f] = [] /\ running_jobs [f] = [job_p].

Lemma job_frame_waiting (f : frame) (job_p : positive) (k : list frame) : job_frame f job_p -> fulfilling (f :: k) = fulfilling k /\ running_jobs (f :: k) = job_p :: running_jobs k.
Proof. intros [A B]; change (f :: k) with ([f] ++ k); unfold fulfilling, running_jobs in *; rewrite !omap_app, A, B; auto. Qed.

Lemma push_job (w : jworld) (f : frame) (job_p : positive) (k : list frame) (qj : list job) :
  job_frame f job_p -> world_ok w (fulfilling k) (job_p :: running_jobs k) qj -> frames_ok w k -> frame_ok w f -> k <> [] -> ok w (f :: k).
Proof. intros Hf W F Ho Hk; destruct (job_frame_waiting f job_p k Hf) as [A B]; exists qj; rewrite A, B; split; [exact W|]; cbn; auto. Qed.

(** One frame of a job gives way to another *)
Lemma swap_job (w : jworld) (f g : frame) (job_p : positive) (k : list frame) : job_frame f job_p -> job_frame g job_p -> ok w (f :: k) -> frame_ok w g -> k <> [] -> ok w (g :: k).
Proof. intros Hf Hg (qj & W & F) Ho Hk; destruct (job_frame_waiting f job_p k Hf) as [A B]; rewrite A, B in W; eapply push_job; eauto; apply F. Qed.

Lemma free_job_ok (w : jworld) (f : frame) (job_p : positive) (k : list frame) : job_frame f job_p -> ok w (f :: k) -> ok (free_job job_p w) k /\ extends (running_jobs k) w (free_job job_p w).
Proof. intros Hf (qj & W & F); destruct (job_frame_waiting f job_p k Hf) as [A B]; rewrite A, B in W; eapply change_ok; [apply F | apply free_ok; exact W]. Qed.

Lemma settle_capability_goes (w : jworld) (k : list frame) (c : positive) (reject_it : bool) (v : value) : ok w k -> k <> [] -> complete w c -> goes w k (settle_capability c reject_it v k w).
Proof. intros H Hk (p & a & b & Hc & Ha & Hb); unfold settle_capability; rewrite Hc; apply call_goes; [exact H | exact Hk | apply may_call_arguments; destruct reject_it; assumption]. Qed.

Lemma after_handler_goes (w : jworld) (k : list frame) (job_p : positive) (c : completion) : ok w (REACTION_HANDLER job_p :: k) -> k <> [] -> goes w k (after_handler job_p c k w).
Proof.
  intros H Hk; pose proof H as (qj & W & (c0 & h & a & Hj & Hc) & F); unfold after_handler; rewrite Hj.
  assert (H' : ok w (REACTION_SETTLE job_p :: k)) by (apply (swap_job w (REACTION_HANDLER job_p) (REACTION_SETTLE job_p) job_p); [split; reflexivity | split; reflexivity | exact H | exact I | exact Hk]).
  destruct c; apply goes_pushed with (REACTION_SETTLE job_p); apply settle_capability_goes; auto; discriminate.
Qed.

Lemma after_thenable_goes (w : jworld) (k : list frame) (job_p : positive) (c : completion) : ok w (THENABLE_THEN job_p :: k) -> k <> [] -> goes w k (after_thenable job_p c k w).
Proof.
  intros H Hk; destruct c as [v|e]; cbn [after_thenable].
  - destruct (free_job_ok w (THENABLE_THEN job_p) job_p k ltac:(split; reflexivity) H) as (H1 & E1); eapply goes_after; [exact E1 | apply return_goes; assumption].
  - pose proof H as (qj & W & (p & t & g & Hj & Hp & Hr) & F); rewrite Hj; apply goes_pushed with (THENABLE_REJECT job_p).
    apply reject_with_checks_goes; [apply (swap_job w (THENABLE_THEN job_p) (THENABLE_REJECT job_p) job_p); [split; reflexivity | split; reflexivity | exact H | exact I | exact Hk] | discriminate | exact Hp | left; exact Hr].
Qed.

(** The job is at the head of the queue when it starts *)
Lemma process_job_goes (w : jworld) (k : list frame) (qj : list job) (job_p : positive) (j : job) :
  world_ok w (fulfilling k) (job_p :: running_jobs k) qj -> frames_ok w k -> k <> [] -> job_ok w j -> job_at w job_p = Some j ->
  (forall p t f, j = ECMA_JOB_PROMISE_THENABLE p t f -> (exists fl r l, promise_at w p = Some (fl, r, l) /\ pending fl = true) /\ vm_promises w !! p <> Some true /\ p ∉ thenables qj ++ fulfilling k) ->
  goes w k (process_job job_p j k w).
Proof.
  intros W F Hk Hj Hat HT; assert (HF : forall f, job_frame f job_p -> frame_ok w f -> ok w (f :: k)) by (intros f Hf Ho; eapply push_job; eauto).
  destruct j as [c h a|rej e a|e|p t f|cb]; cbn [process_job job_ok] in *.
  - destruct Hj as (Hc & Hh); unfold ecma_process_promise_reaction_job.
    assert (Hset : forall b, goes w k (settle_capability c b a (REACTION_SETTLE job_p :: k) w)) by (intros b; apply goes_pushed with (REACTION_SETTLE job_p); apply settle_capability_goes; [apply HF; [split; reflexivity | exact I] | discriminate | exact Hc]).
    assert (Hcall : callable w h -> goes w k (if ecma_op_is_callable w h then ecma_op_function_call h [a] (REACTION_HANDLER job_p :: k) w else None)).
    { intros K; unfold callable in K; rewrite K; apply goes_pushed with (REACTION_HANDLER job_p); apply call_goes; [apply HF; [split; reflexivity | exists c, h, a; auto] | discriminate | apply may_call_arguments; exact K]. }
    destruct Hh as [->|[->|Hh]]; [apply Hset | apply Hset|]; destruct h; try discriminate; exact (Hcall Hh).
  - apply goes_pushed with (JOB_DONE job_p); apply goes_here; [apply HF; [split; reflexivity | exact I] | intros K; contradiction].
  - apply goes_pushed with (JOB_DONE job_p); apply goes_here; [apply HF; [split; reflexivity | exact I] | intros K; contradiction].
  - destruct Hj as (Hp & Hf); destruct (HT p t f eq_refl) as ((fl & r & l & Hpat & Hpe) & HV & Hs); unfold ecma_process_promise_resolve_thenable_job; rewrite Hpat.
    assert (HF' : flags_ok (Z.land fl (Z.lnot ECMA_PROMISE_ALREADY_RESOLVED)) /\ pending (Z.land fl (Z.lnot ECMA_PROMISE_ALREADY_RESOLVED)) = pending fl /\ fulfilled (Z.land fl (Z.lnot ECMA_PROMISE_ALREADY_RESOLVED)) = fulfilled fl).
    { pose proof (po_flags _ _ _ _ _ _ (wo_promises _ _ _ _ W p fl r l Hpat)) as K; clear -K; flag_cases K; (split; [unfold flags_ok; vm_compute Z.land; set_solver|]); repeat split. }
    destruct HF' as (F1 & F2 & F3); destruct (set_flags_ok w _ _ qj p fl _ r l W Hpat F1 F2 F3) as (W1 & E1); [intros _; right; auto | right; exact HV|].
    set (w1 := set_object p _ w) in *; assert (E1' : extends (running_jobs k) w w1) by (eapply extends_fewer; [|exact E1]; intros jp K; right; exact K).
    assert (Hjf : job_frame (THENABLE_THEN job_p) job_p) by (split; reflexivity); destruct (job_frame_waiting _ _ k Hjf) as [A B].
    eapply goes_after; [exact E1'|]; apply goes_pushed with (THENABLE_THEN job_p); apply run_executor_goes with qj; rewrite ?A, ?B; [exact W1 | discriminate | | apply (callable_kept _ _ _ E1), Hf |].
    + split; [apply (is_promise_kept _ _ _ E1), Hp|]; split; [exact HV|]; intros f2 r2 l2 Hp2 _; unfold promise_at, w1 in Hp2; rewrite set_object_at in Hp2; injection Hp2 as <- <- <-; rewrite F2; auto.
    + intros w' E' Hp' Hr'; split; [|split; [right; exact Hk|]].
      * exists p, t, f; split; [|auto]; rewrite (ext_jobs _ _ _ E') by left; exact Hat.
      * eapply frames_kept; [|exact F]; eapply extends_trans; [exact E1'|]; eapply extends_fewer; [|exact E']; intros jp K; right; exact K.
  - destruct Hj as (Hc & Ha); unfold ecma_process_microtask_job; apply goes_pushed with (JOB_DONE job_p); apply call_goes; [apply HF; [split; reflexivity | exact I] | discriminate | split; [exact Hc | right; exact Ha]].
Qed.

Lemma process_all_goes (w : jworld) (k : list frame) (c : completion) : ok w k -> k <> [] -> goes w k (ecma_process_all_enqueued_jobs c k w).
Proof.
  intros H Hk; destruct c as [v|e]; cbn [ecma_process_all_enqueued_jobs]; [|apply throw_goes; assumption].
  destruct (job_queue_head_p w) as [jp|] eqn:Hh; [|apply return_goes; assumption]; destruct H as (qj & W & F).
  destruct (take_ok w _ _ qj jp W Hh) as (j & next & qj' & -> & Hjat & Hj & W' & E'); rewrite Hjat; set (w' := record (STARTED j) _) in *.
  eapply goes_after; [exact E'|]; apply goes_pushed with PROCESS_JOBS; apply process_job_goes with qj'.
  - exact W'.
  - split; [exact I|]; split; [right; exact Hk | eapply frames_kept; eauto].
  - discriminate.
  - apply (job_kept _ _ _ E'), Hj.
  - unfold job_at; cbn; rewrite Hjat; reflexivity.
  - intros p t f ->; destruct Hj as (Hp & _); destruct (is_promise_at _ _ Hp) as (fl & r & l & Hpat & _).
    destruct (waiting_facts _ _ _ _ p fl r l W ltac:(left) Hpat) as (Hpe & _ & HV); split; [exists fl, r, l; split; [exact Hpat | exact Hpe]|]; split; [exact HV|].
    exact (taken_thenable _ _ _ _ p t f W).
Qed.

(** ** Steps *)

Lemma resume_goes (w : jworld) (f : frame) (k : list frame) (c : completion) : ok w (f :: k) -> goes w k (resume f c k w).
Proof.
  intros H; pose proof H as (qj & W & Hf & Hk & F).
  assert (HK : f <> PROGRAM -> k <> []) by (intros K; destruct Hk; [contradiction | assumption]); clear Hk.
  destruct f; try (assert (Hk : k <> []) by (apply HK; discriminate)); cbn [resume]; cbn [frame_ok] in Hf;
    try (assert (H0 : ok w k) by (eapply pop_ok; [|exact H]; split; reflexivity)).
  - apply goes_here; [exact H0 | intros K; contradiction].
  - apply after_fulfill_goes; exact H.
  - destruct Hf as (f & r & l & Hp & Hpe); unfold clear_reactions; rewrite Hp; destruct H0 as (qj' & W' & _).
    destruct (wo_promises _ _ _ _ W' _ _ _ _ Hp) as [P1 P2 P3 P4 P5]; destruct (P3 Hpe) as (-> & _).
    destruct (change_ok _ _ k _ F (set_flags_ok w _ _ qj' _ f f r [] W' Hp P1 eq_refl eq_refl (fun K => or_introl K) (or_introl eq_refl))) as (K1 & K2).
    eapply goes_after; [exact K2 | apply return_goes; assumption].
  - destruct Hf; apply after_executor_goes; assumption.
  - apply return_goes; assumption.
  - destruct Hf; apply after_capability_goes; assumption.
  - apply after_species_constructor_goes; assumption.
  - apply after_species_symbol_goes; assumption.
  - apply after_constructor_goes; assumption.
  - apply after_resolve_call_goes; assumption.
  - apply after_put_goes; assumption.
  - apply after_invoke_then_goes; assumption.
  - apply after_on_finally_goes; assumption.
  - apply after_finally_promise_goes; assumption.
  - apply after_handler_goes; assumption.
  - destruct (free_job_ok w (REACTION_SETTLE job_p) job_p k ltac:(split; reflexivity) H) as (H1 & E1); eapply goes_after; [exact E1 | apply goes_here; auto].
  - apply after_thenable_goes; assumption.
  - destruct (free_job_ok w (THENABLE_REJECT job_p) job_p k ltac:(split; reflexivity) H) as (H1 & E1); eapply goes_after; [exact E1 | apply return_goes; assumption].
  - destruct (free_job_ok w (JOB_DONE job_p) job_p k ltac:(split; reflexivity) H) as (H1 & E1); eapply goes_after; [exact E1 | apply goes_here; auto].
  - apply process_all_goes; assumption.
Qed.

Lemma no_resolvers_open (w : jworld) (waiting running : list positive) (qj : list job) (p : positive) : world_ok w waiting running qj -> vm_promises w !! p = Some true -> ~ has_resolvers w p.
Proof. intros W Hv (x & [Hx|Hx]); apply (wo_objects _ _ _ _ W) in Hx; destruct Hx as [_ Hx]; contradiction. Qed.

Lemma act_goes (a : action) (w : jworld) (k : list frame) : ok w k -> admissible a k w = true -> goes w k (act a k w).
Proof.
  intros H Ha; assert (H' : ok w (PROGRAM :: k)) by (apply push_ok; [split; reflexivity | exact H | exact I | left; reflexivity]).
  assert (HP : PROGRAM :: k <> []) by discriminate; destruct a; cbn [act admissible] in *.
  - apply goes_here; [exact H | intros _; destruct k; congruence].
  - apply andb_prop in Ha as [A B]; apply goes_pushed with PROGRAM; apply call_goes; [exact H' | exact HP | split; [exact A|]]; destruct args; [right; exact B | left; discriminate].
  - destruct (create_goes w k ob H) as (H1 & E1); [destruct ob; try discriminate; exact I | destruct ob; try discriminate; exact I|]; eapply goes_after; [exact E1 | apply goes_here; [exact H1 | intros K; contradiction]].
  - apply goes_pushed with PROGRAM; destruct (ecma_op_is_callable w executor) eqn:Hc; [apply create_promise_goes; [exact H' | exact HP | intros v [= <-]; exact Hc] | apply type_error_goes; assumption].
  - apply goes_pushed with PROGRAM; apply then_goes; assumption.
  - apply goes_pushed with PROGRAM; apply finally_goes; assumption.
  - apply goes_pushed with PROGRAM; apply reject_or_resolve_goes; assumption.
  - apply goes_pushed with PROGRAM; apply new_capability_goes; [exact H' | exact HP | exact I].
  - destruct (ecma_op_is_callable w callback) eqn:Hc; [|apply goes_pushed with PROGRAM; apply type_error_goes; assumption]; unfold ecma_enqueue_microtask_job; rewrite Hc; destruct H as (qj & W & F).
    destruct (ecma_enqueue_job_added None (ECMA_JOB_MICROTASK callback) (running_jobs k) qj w (wo_queue _ _ _ _ W)) as (w' & -> & A).
    destruct (change_ok w w' k _ F (enqueue_ok w w' (fulfilling k) (running_jobs k) qj (ECMA_JOB_MICROTASK callback) W A (conj Hc Ha))) as (K1 & K2).
    eapply goes_after; [exact K2 | apply goes_here; [exact K1 | intros K; contradiction]].
  - apply goes_pushed with PROGRAM; apply process_all_goes; assumption.
  - apply goes_pushed with PROGRAM; apply create_promise_goes; [exact H' | exact HP | discriminate].
  - apply andb_prop in Ha as [A B]; assert (HU : usable w promise) by (right; destruct (vm_promises w !! promise); [discriminate | reflexivity]).
    apply goes_pushed with PROGRAM; destruct is_resolve; [apply fulfill_with_checks_goes | apply reject_with_checks_goes]; assumption.
  - destruct H as (qj & W & F); destruct (create_promise_ok w _ _ qj W) as (W1 & E1 & Hp & Hs & Hv & Hr); cbn [create_object] in *; cbn [snd] in *.
    destruct (set_vm_ok _ _ _ qj (fresh_object w) true 1 UNDEFINED [] W1 Hp Hr eq_refl eq_refl Hs ltac:(congruence)) as (W2 & E2).
    destruct (change_ok _ _ k _ F (conj W2 (extends_trans _ _ _ _ E1 E2))) as (K1 & K2); eapply goes_after; [exact K2 | apply goes_here; [exact K1 | intros K; contradiction]].
  - destruct (vm_promises w !! promise) as [open|] eqn:Hv; [subst open | discriminate]; destruct H as (qj & W & F); pose proof (no_resolvers_open _ _ _ _ _ W Hv) as Hr.
    destruct (is_promise_at _ _ (wo_vm _ _ _ _ W _ _ Hv)) as (f & r & l & Hp & _); destruct (po_vm _ _ _ _ _ _ (wo_promises _ _ _ _ W _ _ _ _ Hp) Hv) as (Hpe & Hal & Hs).
    destruct (set_vm_ok w _ _ qj promise false f r l W Hp Hr Hpe Hal Hs ltac:(congruence)) as (W1 & E1); set (w1 := set_vm promise false w) in *.
    assert (S : settleable w1 (thenables qj ++ fulfilling (PROGRAM :: k)) promise).
    { exists f, r, l; split; [exact Hp|]; split; [exact Hpe|]; unfold w1, usable; cbn; rewrite lookup_insert_eq; split; [right; intros [K|K]; [exact (Hr K) | discriminate]|]; split; [discriminate | exact Hs]. }
    assert (F1 : frames_ok w1 (PROGRAM :: k)) by (split; [exact I|]; split; [left; reflexivity | eapply frames_kept; eauto]).
    apply goes_pushed with PROGRAM; eapply (goes_after w w1 (PROGRAM :: k)); [exact E1|]; destruct is_resolve; [eapply fulfill_goes | eapply reject_goes]; eauto.
  - destruct (async_then_ok w k promise executable_object H Ha) as (w' & -> & K1 & K2); eapply goes_after; [exact K2 | apply goes_here; [exact K1 | intros K; contradiction]].
  - destruct H as (qj & W & F); unfold ecma_enqueue_promise_async_generator_job.
    destruct (ecma_enqueue_job_added None (ECMA_JOB_PROMISE_ASYNC_GENERATOR executable_object) (running_jobs k) qj w (wo_queue _ _ _ _ W)) as (w' & -> & A).
    destruct (change_ok w w' k _ F (enqueue_ok w w' (fulfilling k) (running_jobs k) qj (ECMA_JOB_PROMISE_ASYNC_GENERATOR executable_object) W A I)) as (K1 & K2).
    eapply goes_after; [exact K2 | apply goes_here; [exact K1 | intros K; contradiction]].
Qed.
