(* ===== verification/PromiseSpec.v ===== *)
(** * Promises and jobs: what the engine promises

    For every run from the start of the engine, whatever the program, the embedder and the
    interpreter do: no assertion fails and nothing is followed that is not there; a promise
    is settled once; each reaction is scheduled once, with the outcome; jobs start in the
    order in which they were enqueued.  Then what goes wrong outside of these runs, and
    where the engine differs from the language. *)
From Stdlib Require Import ZArith Lia Bool List.
From stdpp Require Import base gmap list.
From S2P Require Import Prelude JobQueue Promise JobRun PromiseInv PromiseChanges PromiseSafe PromiseCalls.
Import ListNotations.
#[local] Open Scope Z_scope.
#[local] Open Scope partial_scope.

(** ** Reachable states *)

Lemma boot_ok : state_ok boot.
Proof.
  split; [|intros H; contradiction]; exists []; split; [|exact I]; constructor.
  - reflexivity.
  - exists []; split; [|reflexivity]; constructor; cbn; [reflexivity | contradiction | constructor |]; intros jp; rewrite lookup_empty; split; [intros [x H]; discriminate | intros H; inversion H].
  - reflexivity.
  - constructor.
  - intros o ob Ho; cbn in Ho; apply lookup_singleton_Some in Ho as [_ <-]; exact I.
  - intros p f r l Hp; apply promise_at_object in Hp; cbn in Hp; apply lookup_singleton_Some in Hp as [_ Hp]; discriminate.
  - constructor.
  - intros p Hp; inversion Hp.
  - intros p b Hp; cbn in Hp; rewrite lookup_empty in Hp; discriminate.
  - intros p [H|H]; contradiction.
Qed.

Lemma step_with_goes (a : action) (s : state) : state_ok s -> may_step a s = true -> exists s', step_with a s = Some s' /\ state_ok s' /\ extends [] (world s) (world s').
Proof.
  intros [H Hk] Hm; unfold step_with, may_step in *; destruct s as [w c k]; cbn [ctl frames world] in *; destruct c as [|c].
  - destruct (act_goes a w k H Hm) as (s' & A & B & C); exists s'; split; [exact A|]; split; [exact B|]; eapply extends_fewer; [|exact C]; intros jp K; inversion K.
  - destruct k as [|f k]; [exfalso; apply Hk; [discriminate | reflexivity]|]; destruct (resume_goes w f k c H) as (s' & A & B & C); exists s'; split; [exact A|]; split; [exact B|].
    eapply extends_fewer; [|exact C]; intros jp K; inversion K.
Qed.

Lemma step_ok (s s' : state) : state_ok s -> step s s' -> state_ok s' /\ extends [] (world s) (world s').
Proof. intros H [a Hm Hs]; destruct (step_with_goes a s H Hm) as (s2 & A & B & C); rewrite Hs in A; injection A as <-; auto. Qed.

Lemma steps_ok (s s' : state) : state_ok s -> rtc step s s' -> state_ok s' /\ extends [] (world s) (world s').
Proof.
  intros H R; induction R as [s|s s1 s' H1 R IH]; [split; [exact H | apply extends_refl]|].
  destruct (step_ok s s1 H H1) as (A & B); destruct (IH A) as (C & D); split; [exact C | eapply extends_trans; eauto].
Qed.

Lemma reachable_ok (s : state) : reachable s -> state_ok s.
Proof. intros R; apply (steps_ok boot s boot_ok R). Qed.

Lemma run_actions_steps (fuel : nat) (acts : list action) (s s' : state) : run_actions fuel acts s = Some s' -> rtc step s s'.
Proof.
  revert acts s; induction fuel as [|fuel IH]; intros acts s H; [discriminate|]; cbn [run_actions] in H; destruct (ctl s) as [|c] eqn:Hc.
  - destruct acts as [|a acts]; [injection H as <-; apply rtc_refl|]; destruct (may_step a s) eqn:Hm; [|discriminate]; destruct (step_with a s) as [s1|] eqn:Hs; [|discriminate].
    eapply rtc_l; [econstructor; eauto | apply (IH _ _ H)].
  - destruct (step_with (DO_RETURN (NORMAL UNDEFINED)) s) as [s1|] eqn:Hs; [|discriminate].
    eapply rtc_l; [apply (step_action s s1 (DO_RETURN (NORMAL UNDEFINED))); [unfold may_step; rewrite Hc; reflexivity | exact Hs] | apply (IH _ _ H)].
Qed.

Lemma run_reachable (fuel : nat) (acts : list action) (s : state) : run_actions fuel acts boot = Some s -> reachable s.
Proof. apply run_actions_steps. Qed.

(** ** Statuses *)

Inductive status := PENDING | SETTLED (is_reject : bool) (v : value).

(** What the flags and the result of a promise say *)
Definition promise_status (w : jworld) (p : positive) : option status :=
  let? (f, r, _) := promise_at w p in
  Some (if flag_of f ECMA_PROMISE_IS_PENDING then PENDING else SETTLED (negb (flag_of f ECMA_PROMISE_IS_FULFILLED)) r).

Lemma status_kept (running : list positive) (w w' : jworld) (p : positive) (is_reject : bool) (v : value) :
  extends running w w' -> promise_status w p = Some (SETTLED is_reject v) -> promise_status w' p = Some (SETTLED is_reject v).
Proof.
  intros E; unfold promise_status; destruct (promise_at w p) as [[[f r] l]|] eqn:Hp; [|discriminate]; fold (pending f); fold (fulfilled f); destruct (pending f) eqn:Hpe; [discriminate|].
  intros [= <- <-]; apply promise_at_object in Hp; destruct (ext_objects _ _ _ E _ _ Hp) as (ob & Ho & (f' & r' & l' & -> & L)); destruct (L Hpe) as (A & B & C).
  rewrite (proj2 (promise_at_object w' p f' r' l') Ho); fold (pending f'); fold (fulfilled f'); rewrite A, B, C; reflexivity.
Qed.

(** ** The jobs that wait *)

Fixpoint follow (fuel : nat) (js : gmap positive (job * option positive)) (head : option positive) : list job :=
  match head, fuel with
  | Some job_p, S fuel => match js !! job_p with Some (j, next) => j :: follow fuel js next | None => [] end
  | _, _ => []
  end.

(** The queue, from its first job; the blocks bound its length *)
Definition queued_jobs (w : jworld) : list job := follow (size (jobs w)) (jobs w) (job_queue_head_p w).

Lemma follow_linked (js : gmap positive (job * option positive)) (q : list (positive * job)) (h : option positive) (fuel : nat) :
  linked js h q None -> (length q <= fuel)%nat -> follow fuel js h = q.*2.
Proof.
  revert h fuel; induction q as [|[jp j] q IH]; intros h fuel; cbn [linked]; [intros -> _; destruct fuel; reflexivity|].
  intros (-> & next & Hn & L) Hf; cbn [length] in Hf; destruct fuel as [|fuel]; [lia|]; cbn [follow]; rewrite Hn; cbn; f_equal; apply IH; [exact L | lia].
Qed.

Lemma queue_blocks_size (w : jworld) (running : list positive) (q : list (positive * job)) : queue_rep w running q -> size (jobs w) = (length q.*2 + length running)%nat.
Proof.
  intros Q; assert (Hd : dom (jobs w) = (list_to_set (q.*1 ++ running) : gset positive)).
  { apply set_eq; intros jp; rewrite elem_of_dom, elem_of_list_to_set; apply (queue_blocks _ _ _ Q). }
  rewrite <- (size_dom (jobs w)), Hd, size_list_to_set by apply (queue_apart _ _ _ Q); rewrite length_app, !length_fmap; reflexivity.
Qed.

Lemma queue_size (w : jworld) (running : list positive) (q : list (positive * job)) : queue_rep w running q -> (length q <= size (jobs w))%nat.
Proof. intros Q; rewrite (queue_blocks_size _ _ _ Q), length_fmap; lia. Qed.

Lemma queue_of_jobs (w : jworld) (running : list positive) (qj : list job) : queue_of w running qj -> queued_jobs w = qj.
Proof. intros (q & Q & <-); apply follow_linked; [apply (queue_linked _ _ _ Q) | eapply queue_size; exact Q]. Qed.

(** All jobs are released; [running] is left *)
Lemma free_all_queue (w : jworld) (running : list positive) (q : list (positive * job)) (fuel : nat) : queue_rep w running q -> (length q <= fuel)%nat ->
  exists w', free_enqueued_jobs fuel w = Some w' /\ queue_of w' running [] /\ job_queue_head_p w' = None /\ objects w' = objects w.
Proof.
  revert w q; induction fuel as [|fuel IH]; intros w q Q Hf.
  - destruct q; [|cbn in Hf; lia]; pose proof (queue_linked _ _ _ Q) as L; cbn in L; exists w; cbn [free_enqueued_jobs]; rewrite L; split; [reflexivity|]; split; [exists []; auto | auto].
  - cbn [free_enqueued_jobs]; destruct (job_queue_head_p w) as [jp|] eqn:Hh.
    + destruct (queue_take w running q.*2 jp Hh ltac:(exists q; auto)) as (j & next & qj' & Hq & Hjat & Hq'); unfold ecma_job_queue_get_next; rewrite Hjat; cbn [fmap option_fmap option_map snd].
      apply queue_free in Hq' as (q' & Q' & Hq'); assert (Hl : length q' = length qj') by (rewrite <- Hq', length_fmap; reflexivity).
      assert (Hl2 : length q = S (length qj')) by (rewrite <- (length_fmap snd q), Hq; reflexivity).
      destruct (IH _ q' Q' ltac:(lia)) as (w' & A & B & C & D); exists w'; split; [exact A|]; split; [exact B|]; split; [exact C | rewrite D; reflexivity].
    + exists w; split; [reflexivity|]; split; [|auto]; exists []; split; [|reflexivity]; rewrite <- (queue_empty w running q.*2 Hh ltac:(exists q; auto)) in *.
      destruct q; [exact Q | pose proof (queue_linked _ _ _ Q) as L; destruct p; cbn in L; rewrite Hh in L; destruct L; discriminate].
Qed.

(** ** Resolving functions *)

Definition resolver (is_reject : bool) (p : positive) : object := if is_reject then PROMISE_REJECT p else PROMISE_RESOLVE p.

Lemma settled_status (w : jworld) (p : positive) (f : Z) (b : bool) (v : value) (l : list item) : pending f = false -> fulfilled f = b ->
  promise_status (set_object p (PROMISE f v l) w) p = Some (SETTLED (negb b) v).
Proof. intros H1 H2; unfold promise_status, promise_at; rewrite set_object_at; fold (pending f); fold (fulfilled f); rewrite H1, H2; reflexivity. Qed.

Lemma fulfill_with_status (w : jworld) (k0 k : list frame) (qj : list job) (p : positive) (v : value) (s' : state) :
  world_ok w (fulfilling k0) (running_jobs k0) qj -> settleable w (thenables qj ++ fulfilling k0) p -> fulfill_with p v k w = Some s' -> promise_status (world s') p = Some (SETTLED false v).
Proof.
  intros W S; destruct (settle_start w k0 qj p W S) as (f & l & rs & Hp & Hf & Hpe & D & _); destruct (settle_flags f true Hf Hpe) as (f' & Hset & Hf' & Hpf & Hfu & _).
  unfold fulfill_with; rewrite Hp, Hset; cbn [ecma_promise_set_result].
  destruct (trigger_added p v false (running_jobs k0) l rs qj (set_object p (PROMISE f' v l) w) D) as (w2 & -> & A); [eapply queue_of_same; [| | | apply (wo_queue _ _ _ _ W)]; reflexivity|].
  unfold clear_reactions; rewrite (promise_at_after w w2 p f' v l _ eq_refl (added_objects _ _ _ _ _ _ A)); intros [= <-]; exact (settled_status w2 p f' true v [] Hpf Hfu).
Qed.

Lemma reject_status (w : jworld) (k0 k : list frame) (qj : list job) (p : positive) (v : value) (s' : state) :
  world_ok w (fulfilling k0) (running_jobs k0) qj -> settleable w (thenables qj ++ fulfilling k0) p -> ecma_reject_promise p v k w = Some s' -> promise_status (world s') p = Some (SETTLED true v).
Proof.
  intros W S; destruct (settle_start w k0 qj p W S) as (f & l & rs & Hp & Hf & Hpe & D & _); destruct (settle_flags f false Hf Hpe) as (f' & Hset & Hf' & Hpf & Hfu & _).
  unfold ecma_reject_promise; rewrite Hp, Hset; cbn [ecma_promise_set_result].
  destruct (trigger_added p v true (running_jobs k0) l rs qj (set_object p (PROMISE f' v l) w) D) as (w2 & -> & A); [eapply queue_of_same; [| | | apply (wo_queue _ _ _ _ W)]; reflexivity|].
  destruct l as [|i l].
  - destruct (unhandled_flags f' Hf' Hpf Hfu) as (_ & U2 & U3 & _); intros [= <-]; exact (settled_status w2 p _ false v [] U2 U3).
  - unfold clear_reactions; rewrite (promise_at_after w w2 p f' v (i :: l) _ eq_refl (added_objects _ _ _ _ _ _ A)); intros [= <-]; exact (settled_status w2 p f' false v [] Hpf Hfu).
Qed.

(** What the call of a resolving function with the argument [v] does *)
Definition resolved_to (s s' : state) (p : positive) (r : value) (l : list item) (is_reject : bool) (v : value) : Prop :=
  match is_reject, v with
  | false, OBJECT x =>
      if decide (x = p) then exists e, objects (world s) !! e = None /\ promise_status (world s') p = Some (SETTLED true (OBJECT e))
      else ctl s' = RUN /\ frames s' = FULFILL p (OBJECT x) :: PROGRAM :: frames s /\ exists f', promise_at (world s') p = Some (f', r, l) /\ pending f' = true /\ already_resolved f' = true
  | _, _ => promise_status (world s') p = Some (SETTLED is_reject v)
  end.

Lemma resolver_called (s : state) (o p : positive) (is_reject : bool) (args : list value) (f : Z) (r : value) (l : list item) :
  state_ok s -> ctl s = RUN -> objects (world s) !! o = Some (resolver is_reject p) -> promise_at (world s) p = Some (f, r, l) ->
  exists s', step_with (DO_CALL (OBJECT o) args) s = Some s' /\
    if already_resolved f then s' = mk_state (world s) (RETURN (NORMAL UNDEFINED)) (PROGRAM :: frames s) else resolved_to s s' p r l is_reject (argument args 0).
Proof.
  intros Hok Hc Ho Hp; set (v := argument args 0).
  assert (Hm : may_step (DO_CALL (OBJECT o) args) s = true).
  { unfold may_step; rewrite Hc; cbn [admissible callable_without_argument]; unfold ecma_op_is_callable; cbn [object_at]; rewrite Ho; destruct is_reject, args; reflexivity. }
  destruct (step_with_goes _ s Hok Hm) as (s' & Hs & _ & _); exists s'; split; [exact Hs|].
  assert (Hcall : (if is_reject then ecma_reject_promise_with_checks else ecma_fulfill_promise_with_checks) p v (PROGRAM :: frames s) (world s) = Some s').
  { rewrite <- Hs; unfold step_with; rewrite Hc; cbn [act]; unfold ecma_op_function_call, call_function; cbn [object_at]; rewrite Ho; destruct is_reject; reflexivity. }
  clear Hs Hm; destruct Hok as [(qj & W & F) _]; assert (HU : usable (world s) p) by (left; exists o; destruct is_reject; auto).
  destruct (already_resolved f) eqn:HA; [destruct is_reject; revert Hcall; unfold ecma_reject_promise_with_checks, ecma_fulfill_promise_with_checks; rewrite Hp; fold (already_resolved f) in HA; unfold ecma_is_resolver_already_called; unfold already_resolved in HA; rewrite HA; intros [= <-]; reflexivity|].
  destruct (guard_start _ _ qj p f r l W F Hp HU HA) as (W' & _ & S'); set (w' := set_object p _ (world s)) in *.
  destruct is_reject; revert Hcall; unfold ecma_reject_promise_with_checks, ecma_fulfill_promise_with_checks, ecma_is_resolver_already_called; rewrite Hp; unfold already_resolved in HA; rewrite HA; fold w'.
  - intros Hcall; exact (reject_status w' _ _ qj p v s' W' S' Hcall).
  - pose proof S' as (f1 & r1 & l1 & Hp1 & Hpe & HA1 & _ & _); assert (E1 : r1 = r /\ l1 = l) by (unfold w', promise_at in Hp1; rewrite set_object_at in Hp1; injection Hp1 as _ <- <-; auto); destruct E1 as [-> ->].
    unfold ecma_fulfill_promise; rewrite Hp1; unfold pending in Hpe; rewrite Hpe; cbn [negb]; unfold resolved_to; destruct v as [| | | |x|n] eqn:Ev;
      try (destruct (decide _) as [K|_]; [discriminate|]; intros Hcall; exact (fulfill_with_status w' _ _ qj p _ s' W' S' Hcall)).
    destruct (decide (x = p)) as [->|Hne].
    + destruct (decide (OBJECT p = OBJECT p)) as [_|K]; [|contradiction]; destruct (create_ok w' _ _ qj ORDINARY W' I) as (W1 & _); pose proof (create_settleable _ _ _ S') as S1.
      cbn [create_object] in *; cbn [snd] in *; intros Hcall; exists (fresh_object w'); split; [|exact (reject_status _ _ _ qj p _ s' W1 S1 Hcall)].
      pose proof (fresh_object_free w') as K; change (objects w') with (<[p := PROMISE (Z.lor f ECMA_PROMISE_ALREADY_RESOLVED) r l]> (objects (world s))) in K; apply lookup_insert_None in K; apply K.
    + destruct (decide (OBJECT p = OBJECT x)) as [K|_]; [congruence|]; intros [= <-]; cbn [ctl frames world]; split; [reflexivity|]; split; [reflexivity|].
      exists f1; split; [exact Hp1|]; split; [exact Hpe|]; destruct HA1 as [HA1|HA1]; [exact HA1|]; exfalso; apply HA1; left; exists o; unfold w'; cbn.
      rewrite lookup_insert_ne; [auto|]; intros K; apply promise_at_object in Hp; cbn in Ho; congruence.
Qed.

(** ** A run: a thenable, then, await, a microtask, and a rejection without a handler *)

(** Objects: 2 and 3 functions, 4 a thenable, 5 a suspended function, 6 a promise with its resolving
    functions 7 and 8, 11 the promise of then, 14 a promise of the interpreter *)
Definition demo_start : list action :=
  [DO_CREATE (FUNCTION false); DO_CREATE (FUNCTION false); DO_CREATE ORDINARY; DO_CREATE EXECUTABLE;
   DO_NEW_PROMISE (OBJECT 2); DO_CALL (OBJECT 7) [OBJECT 4]; DO_RETURN (NORMAL (OBJECT 2)); DO_RETURN (NORMAL UNDEFINED);
   DO_THEN (OBJECT 6) (OBJECT 2) UNDEFINED; DO_RETURN (NORMAL UNDEFINED);
   DO_VM_PROMISE; DO_VM_AWAIT 6 5; DO_QUEUE_MICROTASK (OBJECT 3)].

(** The thenable fulfills with 5; the microtask; the handler of then returns 6; the suspended function ends *)
Definition demo_jobs : list action :=
  [DO_RUN_JOBS; DO_CALL (OBJECT 15) [PRIMITIVE 5]; DO_RETURN (NORMAL UNDEFINED);
   DO_RETURN (NORMAL UNDEFINED);
   DO_RETURN (NORMAL (PRIMITIVE 6));
   DO_VM_SETTLE 14 NULL false; DO_RETURN (NORMAL UNDEFINED); DO_RETURN (NORMAL UNDEFINED)].

Definition run_from_boot (acts : list action) : state := match run_actions 100 acts boot with Some s => s | None => boot end.
Definition demo_waiting : state := run_from_boot demo_start.
Definition demo_settled : state := run_from_boot (demo_start ++ firstn 2 demo_jobs).
Definition demo_end : state := run_from_boot (demo_start ++ demo_jobs).

Lemma run_from_boot_reachable (acts : list action) : reachable (run_from_boot acts).
Proof. unfold run_from_boot; destruct (run_actions 100 acts boot) as [s|] eqn:H; [eapply run_reachable; exact H | apply rtc_refl]. Qed.

Example demo_statuses : map (promise_status (world demo_waiting)) [6; 11; 14]%positive = [Some PENDING; Some PENDING; Some PENDING] /\
  map (promise_status (world demo_end)) [6; 11; 14]%positive = [Some (SETTLED false (PRIMITIVE 5)); Some (SETTLED false (PRIMITIVE 6)); Some (SETTLED true NULL)].
Proof. vm_compute; split; reflexivity. Qed.

(** ** The claims *)

(** Whatever happens next within the limits leads to a next state *)
Definition goes_on (s : state) : Prop := forall a, may_step a s = true -> exists s', step_with a s = Some s' /\ step s s'.

(** C6: No assertion of ecma-promise-object.c and ecma-jobqueue.c fails, and nothing is followed
    that is not there: in every reachable state, whatever the program, the embedder or the
    interpreter does within its limits leads to a next state, and a native function that
    returns always finds the function that called it. *)
Theorem promise_runs_go_on (s : state) : reachable s -> goes_on s.
Proof.
  intros R a Hm; destruct (step_with_goes a s (reachable_ok s R) Hm) as (s' & A & _); exists s'; split; [exact A | econstructor; eauto].
Qed.

Lemma promise_runs_go_on_witness : exists s', step_with DO_RUN_JOBS demo_waiting = Some s' /\ step demo_waiting s'.
Proof. apply (promise_runs_go_on demo_waiting (run_from_boot_reachable demo_start) DO_RUN_JOBS); vm_compute; reflexivity. Defined.

(** C7: A promise is settled once: when it is fulfilled or rejected, no later step changes
    its state or its result. *)
Theorem settled_promise_stays (s s' : state) (p : positive) (is_reject : bool) (v : value) :
  reachable s -> rtc step s s' -> promise_status (world s) p = Some (SETTLED is_reject v) -> promise_status (world s') p = Some (SETTLED is_reject v).
Proof. intros R Hs; destruct (steps_ok s s' (reachable_ok s R) Hs) as (_ & E); eapply status_kept; exact E. Qed.

Lemma settled_promise_stays_witness : promise_status (world demo_end) 6 = Some (SETTLED false (PRIMITIVE 5)).
Proof.
  apply (settled_promise_stays demo_settled demo_end 6 false (PRIMITIVE 5) (run_from_boot_reachable _)); [|vm_compute; reflexivity].
  apply (run_actions_steps 100 (skipn 2 demo_jobs)); vm_compute; reflexivity.
Defined.

(** C8: Every reaction is scheduled exactly once: while a promise is pending no reaction of it has a
    job, and when it is settled with [v] the jobs enqueued for it are those of its reactions in
    the order of their registration (those before and those after it was settled), each with
    the handler for the outcome and with [v]. *)
Theorem reactions_scheduled_once (s : state) (p : positive) (st : status) : reachable s -> promise_status (world s) p = Some st ->
  scheduled p (history (world s)) = match st with PENDING => [] | SETTLED is_reject v => map (reaction_job is_reject v) (registered p (history (world s))) end.
Proof.
  intros R; destruct (reachable_ok s R) as [(qj & W & _) _]; unfold promise_status; destruct (promise_at (world s) p) as [[[f r] l]|] eqn:Hp; [|discriminate].
  destruct (wo_promises _ _ _ _ W p f r l Hp) as [P1 P2 P3 P4 P5]; fold (pending f); fold (fulfilled f); destruct (pending f) eqn:Hpe; intros [= <-].
  - destruct (P2 eq_refl) as (_ & rs & _ & _ & _ & H); exact H.
  - apply P3; reflexivity.
Qed.

Lemma reactions_scheduled_once_witness :
  scheduled 6 (history (world demo_end)) = map (reaction_job false (PRIMITIVE 5)) (registered 6 (history (world demo_end))) /\ length (registered 6 (history (world demo_end))) = 2%nat.
Proof. split; [apply (reactions_scheduled_once demo_end 6 (SETTLED false (PRIMITIVE 5)) (run_from_boot_reachable _)); vm_compute; reflexivity | vm_compute; reflexivity]. Defined.

(** C9: Jobs start in the order in which they were enqueued, each once, and none is lost: the jobs
    enqueued so far are those started so far followed by those in the queue.  The blocks of
    jobs are those in the queue and those of the jobs that run. *)
Theorem jobs_start_in_order (s : state) : reachable s ->
  enqueued (history (world s)) = started (history (world s)) ++ queued_jobs (world s) /\
  size (jobs (world s)) = (length (queued_jobs (world s)) + length (running_jobs (frames s)))%nat.
Proof.
  intros R; destruct (reachable_ok s R) as [(qj & W & _) _]; pose proof (wo_queue _ _ _ _ W) as Q; rewrite (queue_of_jobs _ _ _ Q); split; [apply (wo_history _ _ _ _ W)|].
  destruct Q as (q & Q & <-); apply (queue_blocks_size (world s) (running_jobs (frames s)) q Q).
Qed.

Lemma jobs_start_in_order_witness : enqueued (history (world demo_waiting)) = started (history (world demo_waiting)) ++ queued_jobs (world demo_waiting) /\ length (queued_jobs (world demo_waiting)) = 2%nat.
Proof. split; [apply (jobs_start_in_order demo_waiting (run_from_boot_reachable _)) | vm_compute; reflexivity]. Defined.

(** ecma_free_all_enqueued_jobs ends, leaves the queue empty, and releases the blocks of all
    jobs in it: what is left are the blocks of the jobs that run. *)
Theorem ecma_free_all_enqueued_jobs_frees (s : state) : reachable s ->
  exists w', ecma_free_all_enqueued_jobs (world s) = Some w' /\ ecma_has_enqueued_jobs w' = false /\ objects w' = objects (world s) /\
    forall job_p, is_Some (jobs w' !! job_p) <-> job_p ∈ running_jobs (frames s).
Proof.
  intros R; destruct (reachable_ok s R) as [(qj & W & _) _]; destruct (wo_queue _ _ _ _ W) as (q & Q & _).
  destruct (free_all_queue (world s) _ q (size (jobs (world s))) Q (queue_size _ _ _ Q)) as (w' & A & (q' & Q' & Hq') & C & D).
  exists w'; split; [exact A|]; split; [unfold ecma_has_enqueued_jobs; rewrite C; reflexivity|]; split; [exact D|].
  apply fmap_nil_inv in Hq'; subst q'; apply (queue_blocks _ _ _ Q').
Qed.

Lemma ecma_free_all_enqueued_jobs_frees_witness :
  exists w', ecma_free_all_enqueued_jobs (world demo_waiting) = Some w' /\ ecma_has_enqueued_jobs w' = false /\ objects w' = objects (world demo_waiting) /\
    forall job_p, is_Some (jobs w' !! job_p) <-> job_p ∈ running_jobs (frames demo_waiting).
Proof. apply (ecma_free_all_enqueued_jobs_frees demo_waiting (run_from_boot_reachable _)). Defined.

(** C10: The functions resolve and reject of a promise, called with any arguments in any reachable
    state.  When the flag ECMA_PROMISE_ALREADY_RESOLVED of the promise is set, nothing changes.
    Otherwise the promise is pending, and it is rejected with the first argument; or fulfilled with
    it, when that is no object; or rejected with a new error, when it is the promise itself; or, for
    another object, the flag is set and the property then of the object is got next. *)
Theorem resolving_function_called (s : state) (o p : positive) (is_reject : bool) (args : list value) (f : Z) (r : value) (l : list item) :
  reachable s -> ctl s = RUN -> objects (world s) !! o = Some (resolver is_reject p) -> promise_at (world s) p = Some (f, r, l) ->
  (already_resolved f = false -> pending f = true) /\
  exists s', step_with (DO_CALL (OBJECT o) args) s = Some s' /\
    if already_resolved f then s' = mk_state (world s) (RETURN (NORMAL UNDEFINED)) (PROGRAM :: frames s) else resolved_to s s' p r l is_reject (argument args 0).
Proof.
  intros R Hc Ho Hp; split; [|exact (resolver_called s o p is_reject args f r l (reachable_ok s R) Hc Ho Hp)].
  destruct (reachable_ok s R) as [(qj & W & _) _]; intros HA; apply (po_guarded _ _ _ _ _ _ (wo_promises _ _ _ _ W p f r l Hp) HA); left; exists o; destruct is_reject; auto.
Qed.

(** Before the first promise of the run above is resolved; the other function is called later *)
Definition demo_unresolved : state := run_from_boot (firstn 5 demo_start ++ [DO_RETURN (NORMAL UNDEFINED)]).

Lemma resolving_function_called_witness :
  (exists s', step_with (DO_CALL (OBJECT 8) [PRIMITIVE 9]) demo_unresolved = Some s' /\ promise_status (world s') 6 = Some (SETTLED true (PRIMITIVE 9))) /\
  (exists s', step_with (DO_CALL (OBJECT 8) [PRIMITIVE 9]) demo_waiting = Some s' /\ s' = mk_state (world demo_waiting) (RETURN (NORMAL UNDEFINED)) (PROGRAM :: frames demo_waiting)).
Proof.
  split.
  - apply (resolving_function_called demo_unresolved 8 6 true [PRIMITIVE 9] 1 UNDEFINED [] (run_from_boot_reachable _)); vm_compute; reflexivity.
  - apply (resolving_function_called demo_waiting 8 6 true [PRIMITIVE 9] 5 UNDEFINED [TAGGED 9 true false false; HANDLER (OBJECT 2); TAGGED 5 false false true] (run_from_boot_reachable _)); vm_compute; reflexivity.
Defined.

(** C11: A resolving function works twice.  When a promise has been resolved with a thenable and the job
    of that is the next one, its functions resolve and reject do nothing, as in the language.  But
    the job clears the flag ECMA_PROMISE_ALREADY_RESOLVED, for the two new functions that it makes,
    and before it calls the function then of the thenable (here a function of the program): from
    there on each old function settles the promise as well, which is still pending, where the
    language ignores the call. *)
Theorem resolve_function_works_twice (s : state) (job_p p t o : positive) (thenable : value) (c is_reject : bool) (v : value) :
  reachable s -> ctl s = RUN -> job_queue_head_p (world s) = Some job_p -> job_at (world s) job_p = Some (ECMA_JOB_PROMISE_THENABLE p thenable (OBJECT t)) ->
  objects (world s) !! t = Some (FUNCTION c) -> objects (world s) !! o = Some (resolver is_reject p) -> (is_reject = true \/ forall x, v <> OBJECT x) ->
  step_with (DO_CALL (OBJECT o) [v]) s = Some (mk_state (world s) (RETURN (NORMAL UNDEFINED)) (PROGRAM :: frames s)) /\
  exists s1 s2, step_with DO_RUN_JOBS s = Some s1 /\ ctl s1 = RUN /\ promise_status (world s1) p = Some PENDING /\
    step_with (DO_CALL (OBJECT o) [v]) s1 = Some s2 /\ promise_status (world s2) p = Some (SETTLED is_reject v).
Proof.
  intros R Hc Hh Hj Ht Ho Hv; pose proof (reachable_ok s R) as Hok; pose proof Hok as [(qj & W & F) _].
  destruct (take_ok _ _ _ qj job_p W Hh) as (j & next & qj' & -> & Hjat & Hjok & _); unfold job_at in Hj; rewrite Hjat in Hj; cbn in Hj; injection Hj as ->; destruct Hjok as (Hpp & _).
  destruct (is_promise_at _ _ Hpp) as (f & r & l & Hp & Hpo); pose proof (wo_promises _ _ _ _ W p f r l Hp) as [P1 P2 P3 P4 P5].
  assert (HA : already_resolved f = true).
  { destruct (already_resolved f) eqn:E; [reflexivity|]; destruct (P4 eq_refl) as (_ & K); [left; exists o; destruct is_reject; auto|]; exfalso; apply K; left. }
  assert (Hpe : pending f = true) by (destruct (pending f); [reflexivity|]; destruct (P3 eq_refl) as (_ & K & _); exfalso; apply K; left).
  destruct (resolver_called s o p is_reject [v] f r l Hok Hc Ho Hp) as (s0 & H0 & E0); rewrite HA in E0; subst s0; split; [exact H0|].
  destruct (step_with_goes DO_RUN_JOBS s Hok) as (s1 & H1 & Hok1 & _); [unfold may_step; rewrite Hc; reflexivity|]; exists s1.
  assert (HF : exists f1, pending f1 = true /\ already_resolved f1 = false /\ f1 = Z.land f (Z.lnot ECMA_PROMISE_ALREADY_RESOLVED)).
  { clear -P1 Hpe; exists (Z.land f (Z.lnot ECMA_PROMISE_ALREADY_RESOLVED)); flag_cases P1; try discriminate; repeat split. }
  destruct HF as (f1 & F1 & F2 & F3).
  assert (Hs1 : ctl s1 = RUN /\ promise_at (world s1) p = Some (f1, r, l) /\ objects (world s1) !! o = Some (resolver is_reject p)).
  { revert H1; unfold step_with; rewrite Hc; cbn [act ecma_process_all_enqueued_jobs]; rewrite Hh, Hjat; cbn [process_job]; unfold ecma_process_promise_resolve_thenable_job.
    set (w0 := record _ _); change (promise_at w0 p) with (promise_at (world s) p); rewrite Hp, <- F3; unfold ecma_promise_run_executor; cbn [create_object].
    set (w1 := set_object p _ w0); set (w2 := set_object (fresh_object w1) _ w1); set (w3 := set_object (fresh_object w2) _ w2).
    assert (K : forall x ob, objects w1 !! x = Some ob -> objects w3 !! x = Some ob).
    { intros x ob Hx; assert (H2 : objects w2 !! x = Some ob) by (unfold w2; cbn; rewrite lookup_insert_ne; [exact Hx|]; intros <-; rewrite fresh_object_free in Hx; discriminate).
      unfold w3; cbn; rewrite lookup_insert_ne; [exact H2|]; intros <-; rewrite fresh_object_free in H2; discriminate. }
    assert (K1 : forall x ob, x <> p -> objects (world s) !! x = Some ob -> objects w3 !! x = Some ob) by (intros x ob Hne Hx; apply K; unfold w1; cbn; rewrite lookup_insert_ne by congruence; exact Hx).
    assert (Ht3 : objects w3 !! t = Some (FUNCTION c)) by (apply K1; [congruence | exact Ht]).
    unfold ecma_op_function_call, call_function; cbn [object_at]; rewrite Ht3; intros [= <-]; cbn [ctl world]; split; [reflexivity|]; split; [apply promise_at_object, K, set_object_at | apply K1; [destruct is_reject; cbn in Ho; congruence | exact Ho]]. }
  destruct Hs1 as (Hc1 & Hp1 & Ho1); destruct (resolver_called s1 o p is_reject [v] f1 r l Hok1 Hc1 Ho1 Hp1) as (s2 & H2 & E2); rewrite F2 in E2; exists s2; split; [exact H1|]; split; [exact Hc1|]; split.
  - unfold promise_status; rewrite Hp1; fold (pending f1); rewrite F1; reflexivity.
  - split; [exact H2|]; destruct is_reject; [exact E2|]; destruct Hv as [Hv|K]; [discriminate|]; cbn in E2; destruct v; try exact E2; exfalso; exact (K o0 eq_refl).
Qed.

Lemma resolve_function_works_twice_witness :
  step_with (DO_CALL (OBJECT 7) [PRIMITIVE 9]) demo_waiting = Some (mk_state (world demo_waiting) (RETURN (NORMAL UNDEFINED)) (PROGRAM :: frames demo_waiting)) /\
  exists s1 s2, step_with DO_RUN_JOBS demo_waiting = Some s1 /\ ctl s1 = RUN /\ promise_status (world s1) 6 = Some PENDING /\
    step_with (DO_CALL (OBJECT 7) [PRIMITIVE 9]) s1 = Some s2 /\ promise_status (world s2) 6 = Some (SETTLED false (PRIMITIVE 9)).
Proof.
  apply (resolve_function_works_twice demo_waiting 1 6 2 7 (OBJECT 4) false false (PRIMITIVE 9) (run_from_boot_reachable _)); try (vm_compute; reflexivity); right; discriminate.
Defined.

(** Two assertions can fail outside of the limits of the other claims.  A function then of the
    program (2) that Promise.prototype.finally calls gets a function (4) that asserts that it has
    an argument, and calls it without one.  And jjs_promise_resolve on the promise (2) of an
    asynchronous function settles it, so that the end of the function finds it settled. *)
Example promise_assertions_fail :
  let finally := run_from_boot [DO_CREATE (FUNCTION true); DO_CREATE ORDINARY; DO_FINALLY (OBJECT 3) (OBJECT 2); DO_RETURN (NORMAL UNDEFINED); DO_RETURN (NORMAL (OBJECT 2))] in
  let async := run_from_boot [DO_VM_PROMISE] in
  ecma_op_is_callable (world finally) (OBJECT 4) = true /\ ctl finally = RUN /\ step_with (DO_CALL (OBJECT 4) []) finally = None /\
  vm_promises (world async) !! 2%positive = Some true /\
  exists s, step_with (DO_API_SETTLE 2 NULL true) async = Some s /\ promise_status (world s) 2 = Some (SETTLED false NULL) /\ step_with (DO_VM_SETTLE 2 NULL true) (mk_state (world s) RUN []) = None.
Proof. do 4 (split; [vm_compute; reflexivity|]); eexists; split; [vm_compute; reflexivity|]; split; vm_compute; reflexivity. Qed.
