(* ===== verification/PromiseAll.v ===== *)
(** * Promise.all, Promise.allSettled and Promise.any

    ecma_builtin_promise_helper and ecma_builtin_promise_perform of ecma-builtin-promise.c,
    the element functions (ecma_promise_all_or_all_settled_handler_cb) and their counter.
    Iterating, the function resolve of the constructor, the functions then and the functions of
    the capability are code of the program, which may call element functions, and the function
    of the capability that then receives, at any time; its choices are the [combine]s.  What is
    done with the capability and the iterator is logged.  An aggregate error is represented by
    the errors it is made of: ecma_new_aggregate_error reads them with the iterator of arrays,
    which is taken to be the built-in one. *)
From Stdlib Require Import ZArith Lia Bool List.
From stdpp Require Import base list.
From S2P Require Import Prelude Values JobQueue.
Import ListNotations.
#[local] Open Scope Z_scope.
#[local] Open Scope partial_scope.

(** ** Data *)

Inductive routine := ECMA_PROMISE_ROUTINE_ALL | ECMA_PROMISE_ROUTINE_ALLSETTLED | ECMA_PROMISE_ROUTINE_ANY.
Inductive executor_type := ECMA_PROMISE_ALL_RESOLVE | ECMA_PROMISE_ALLSETTLED_RESOLVE | ECMA_PROMISE_ALLSETTLED_REJECT | ECMA_PROMISE_ANY_REJECT.

(** An element of the array of values: a value, or an object with status and value or reason *)
Inductive entry := VALUE (v : value) | STATUS (is_reject : bool) (v : value).

Record ecma_promise_all_executor_t := mk_executor { type_of : executor_type; index : Z }.

(** The place where the program runs: ecma_op_get_iterator; the property resolve of the
    constructor; the iterator; the function resolve; the function then.  After the loop: the
    iterator has ended, or an exception has left it *)
Inductive phase := OPENS | STARTS | ITERATES | RESOLVES | INVOKES | ENDED | THROWN.

(** The capability's resolve is called with the array; its reject with an aggregate error, or
    with the pending exception (ecma_op_if_abrupt_reject_promise).  The iterator is closed.  The
    program calls the function of the capability that it received as an argument of then *)
Inductive capability_call := RESOLVE_WITH (values : list entry) | REJECT_WITH (errors : list entry) | ABRUPT | CLOSE | BY_THEN (args : list value).

Record combinator := mk_combinator {
  at_phase : phase;
  idx : Z;
  remaining : Z;
  values : list entry;
  executors : list ecma_promise_all_executor_t;
  calls : list capability_call
}.

Definition set_phase (p : phase) (c : combinator) : combinator := mk_combinator p (idx c) (remaining c) (values c) (executors c) (calls c).
Definition set_remaining (r : Z) (c : combinator) : combinator := mk_combinator (at_phase c) (idx c) r (values c) (executors c) (calls c).
Definition set_values (v : list entry) (c : combinator) : combinator := mk_combinator (at_phase c) (idx c) (remaining c) v (executors c) (calls c).
Definition set_executors (e : list ecma_promise_all_executor_t) (c : combinator) : combinator := mk_combinator (at_phase c) (idx c) (remaining c) (values c) e (calls c).
Definition log_calls (l : list capability_call) (c : combinator) : combinator := mk_combinator (at_phase c) (idx c) (remaining c) (values c) (executors c) (calls c ++ l).

(** ** The counter *)

(** The counter has to be an integer value; a larger number is a float value *)
Definition ecma_promise_remaining_inc_or_dec (is_inc : bool) (c : combinator) : option combinator :=
  if (0 <=? remaining c) && (remaining c <=? ECMA_INTEGER_NUMBER_MAX)
  then Some (set_remaining (if is_inc then u32 (remaining c + 1) else u32 (remaining c - 1)) c) else None.

(** ** The element functions *)

Definition entry_of (t : executor_type) (arg : value) : entry :=
  match t with
  | ECMA_PROMISE_ALL_RESOLVE | ECMA_PROMISE_ANY_REJECT => VALUE arg
  | ECMA_PROMISE_ALLSETTLED_RESOLVE => STATUS false arg
  | ECMA_PROMISE_ALLSETTLED_REJECT => STATUS true arg
  end.

Definition ecma_promise_all_or_all_settled_handler_cb (i : nat) (args : list value) (c : combinator) : option combinator :=
  let arg := match args with a :: _ => a | [] => UNDEFINED end in
  let? executor_p := executors c !! i in
  if index executor_p =? 0 then Some c
  else
    let c := set_values (<[Z.to_nat (index executor_p - 1) := entry_of (type_of executor_p) arg]> (values c)) c in
    let c := set_executors (<[i := mk_executor (type_of executor_p) 0]> (executors c)) c in
    let? c := ecma_promise_remaining_inc_or_dec false c in
    if remaining c =? 0
    then Some (log_calls [match type_of executor_p with ECMA_PROMISE_ANY_REJECT => REJECT_WITH (values c) | _ => RESOLVE_WITH (values c) end] c)
    else Some c.

(** ** The loop *)

(** The capability has been made *)
Definition perform_start : combinator := mk_combinator OPENS 0 1 [] [] [].

(** The iterator gives a value: h *)
Definition perform_value (c : combinator) : combinator := set_phase RESOLVES (set_values (values c ++ [VALUE UNDEFINED]) c).

Definition new_executors (r : routine) (i : Z) : list ecma_promise_all_executor_t :=
  match r with
  | ECMA_PROMISE_ROUTINE_ALL => [mk_executor ECMA_PROMISE_ALL_RESOLVE i]
  | ECMA_PROMISE_ROUTINE_ALLSETTLED => [mk_executor ECMA_PROMISE_ALLSETTLED_RESOLVE i; mk_executor ECMA_PROMISE_ALLSETTLED_REJECT i]
  | ECMA_PROMISE_ROUTINE_ANY => [mk_executor ECMA_PROMISE_ANY_REJECT i]
  end.

(** The end of ecma_builtin_promise_helper when the loop has returned ECMA_VALUE_ERROR:
    ecma_op_iterator_close unless done was set, then ecma_op_if_abrupt_reject_promise *)
Definition helper_error (is_done : bool) (c : combinator) : combinator := set_phase THROWN (log_calls (if is_done then [ABRUPT] else [CLOSE; ABRUPT]) c).

(** The function resolve gave a promise: j to q, up to the call of its function then *)
Definition perform_promise (r : routine) (c : combinator) : option combinator :=
  if idx c =? B32 - 1 - 1 then Some (helper_error false c)
  else
    let i := idx c + 1 in
    ecma_promise_remaining_inc_or_dec true (mk_combinator INVOKES i (remaining c) (values c) (executors c ++ new_executors r i) (calls c)).

(** The iterator has ended: d.  For any, the aggregate error is raised and ends in the helper as
    an exception does.  Otherwise the capability's resolve is called; when it throws, the helper
    goes on to call the capability's reject *)
Definition perform_done (r : routine) (resolve_throws : bool) (c : combinator) : option combinator :=
  let? c := ecma_promise_remaining_inc_or_dec false c in
  let c := set_phase ENDED c in
  if remaining c =? 0
  then Some (log_calls (match r with
                        | ECMA_PROMISE_ROUTINE_ANY => [REJECT_WITH (values c)]
                        | _ => RESOLVE_WITH (values c) :: (if resolve_throws then [ABRUPT] else [])
                        end) c)
  else Some c.

(** ** Runs *)

Inductive combine :=
| RETURNS (** the iterator is got; the function resolve is got and callable; then returns *)
| ITERATOR_VALUE
| ITERATOR_DONE (resolve_throws : bool) (** what the capability's resolve does if it is called now *)
| PROMISE_RESOLVED (** the function resolve returns, and then of its result is called *)
| ITERATOR_THROWS (** getting or stepping the iterator throws *)
| THROWS (** getting or calling resolve throws, or then does *)
| ELEMENT (i : nat) (args : list value) (** an element function is called *)
| HANDED (args : list value). (** the capability's reject (all) or resolve (any), an argument of then, is called *)

Definition combine_step (r : routine) (x : combine) (c : combinator) : option combinator :=
  match x with
  | RETURNS => Some (set_phase (match at_phase c with OPENS => STARTS | _ => ITERATES end) c)
  | ITERATOR_VALUE => Some (perform_value c)
  | ITERATOR_DONE resolve_throws => perform_done r resolve_throws c
  | PROMISE_RESOLVED => perform_promise r c
  | ITERATOR_THROWS => Some (helper_error true c)
  | THROWS => Some (helper_error false c)
  | ELEMENT i args => ecma_promise_all_or_all_settled_handler_cb i args c
  | HANDED args => Some (log_calls [BY_THEN args] c)
  end.

(** The program is called at the place of the loop; the functions exist *)
Definition combine_may (r : routine) (x : combine) (c : combinator) : bool :=
  match x, at_phase c with
  | RETURNS, (OPENS | STARTS | INVOKES) => true
  | (ITERATOR_VALUE | ITERATOR_DONE _), ITERATES | PROMISE_RESOLVED, RESOLVES => true
  | ITERATOR_THROWS, (OPENS | ITERATES) | THROWS, (STARTS | RESOLVES | INVOKES) => true
  | ELEMENT i _, _ => (i <? length (executors c))%nat
  | HANDED _, _ => negb (match r with ECMA_PROMISE_ROUTINE_ALLSETTLED => true | _ => false end) && (0 <? idx c)
  | _, _ => false
  end.

Fixpoint combine_run (r : routine) (xs : list combine) (c : combinator) : option combinator :=
  match xs with
  | [] => Some c
  | x :: xs => let? c := combine_step r x c in combine_run r xs c
  end.

Fixpoint combine_may_run (r : routine) (xs : list combine) (c : combinator) : bool :=
  match xs with
  | [] => true
  | x :: xs => combine_may r x c && match combine_step r x c with Some c => combine_may_run r xs c | None => true end
  end.

(** ** What the combinators promise *)

(** The argument of the first call of an element function *)
Fixpoint first_argument (i : nat) (xs : list combine) : option value :=
  match xs with
  | [] => None
  | ELEMENT j args :: xs => if (i =? j)%nat then Some (match args with a :: _ => a | [] => UNDEFINED end) else first_argument i xs
  | _ :: xs => first_argument i xs
  end.

Definition is_called (xs : list combine) (i : nat) : bool := match first_argument i xs with Some _ => true | None => false end.

(** What the element functions of the promise at place i were called with: one function, or one
    for each outcome *)
Definition outcome (r : routine) (xs : list combine) (i : nat) : option entry :=
  match r with
  | ECMA_PROMISE_ROUTINE_ALLSETTLED =>
    match first_argument (2 * i) xs with
    | Some v => Some (STATUS false v)
    | None => option_map (STATUS true) (first_argument (2 * i + 1) xs)
    end
  | _ => option_map VALUE (first_argument i xs)
  end.

Definition elements (xs : list combine) : nat := length (List.filter (fun x => match x with PROMISE_RESOLVED => true | _ => false end) xs).
Definition has_ended (xs : list combine) : bool := existsb (fun x => match x with ITERATOR_DONE _ => true | _ => false end) xs.
Definition iterator_has_thrown (xs : list combine) : bool := existsb (fun x => match x with ITERATOR_THROWS => true | _ => false end) xs.
Definition has_thrown (xs : list combine) : bool := existsb (fun x => match x with THROWS => true | _ => false end) xs.
Definition is_settled (r : routine) (xs : list combine) (i : nat) : bool := match outcome r xs i with Some _ => true | None => false end.
Definition all_settled (r : routine) (xs : list combine) : bool := forallb (is_settled r xs) (seq 0 (elements xs)).
Definition entry_at (r : routine) (xs : list combine) (i : nat) : entry := match outcome r xs i with Some e => e | None => VALUE UNDEFINED end.
Definition entries (r : routine) (xs : list combine) : list entry := map (entry_at r xs) (seq 0 (elements xs)).

(** The iterator ended when every promise was settled, and the capability's resolve threw *)
Definition end_throws (r : routine) (xs : list combine) : bool :=
  existsb (fun n => match xs !! n with Some (ITERATOR_DONE true) => all_settled r (take n xs) | _ => false end) (seq 0 (length xs)).

(** What the combinator itself does with the capability and the iterator: an exception closes the
    iterator, unless it comes from it, and rejects; when the loop has ended and each promise was
    settled, the capability is called with the outcomes in order of the iteration; and an
    exception of this call at the end of the loop rejects too *)
Definition combined (r : routine) (xs : list combine) : list capability_call :=
  if iterator_has_thrown xs then [ABRUPT]
  else if has_thrown xs then [CLOSE; ABRUPT]
  else if has_ended xs && all_settled r xs
  then match r with
       | ECMA_PROMISE_ROUTINE_ANY => [REJECT_WITH (entries r xs)]
       | _ => RESOLVE_WITH (entries r xs) :: (if end_throws r xs then [ABRUPT] else [])
       end
  else [].

(** The calls of the program through the argument of then *)
Definition is_own (x : capability_call) : bool := match x with BY_THEN _ => false | _ => true end.
Fixpoint handed (xs : list combine) : list capability_call :=
  match xs with
  | [] => []
  | HANDED args :: xs => BY_THEN args :: handed xs
  | _ :: xs => handed xs
  end.

(** The functions then of allSettled call one of their two element functions at most *)
Definition settles_once (r : routine) (xs : list combine) : bool :=
  match r with
  | ECMA_PROMISE_ROUTINE_ALLSETTLED => forallb (fun i => negb (is_called xs (2 * i) && is_called xs (2 * i + 1))) (seq 0 (elements xs))
  | _ => true
  end.

(** ** The state after the choices *)

Definition width (r : routine) : nat := match r with ECMA_PROMISE_ROUTINE_ALLSETTLED => 2 | _ => 1 end.
Definition kind_of (r : routine) (j : nat) : executor_type :=
  match r with
  | ECMA_PROMISE_ROUTINE_ALL => ECMA_PROMISE_ALL_RESOLVE
  | ECMA_PROMISE_ROUTINE_ALLSETTLED => if Nat.even j then ECMA_PROMISE_ALLSETTLED_RESOLVE else ECMA_PROMISE_ALLSETTLED_REJECT
  | ECMA_PROMISE_ROUTINE_ANY => ECMA_PROMISE_ANY_REJECT
  end.
Definition executor_at (r : routine) (xs : list combine) (j : nat) : ecma_promise_all_executor_t :=
  mk_executor (kind_of r j) (if is_called xs j then 0 else Z.of_nat (j / width r) + 1).
Definition unsettled (r : routine) (xs : list combine) : nat := length (List.filter (fun i => negb (is_settled r xs i)) (seq 0 (elements xs))).
Definition base (p : phase) : Z := match p with ENDED => 0 | _ => 1 end.
Definition thrown (xs : list combine) : bool := iterator_has_thrown xs || has_thrown xs.
Definition extra_ok (p : phase) (extra : list entry) : Prop := match p with RESOLVES => extra = [VALUE UNDEFINED] | THROWN => True | _ => extra = [] end.

Record combined_ok (r : routine) (xs : list combine) (c : combinator) : Prop := {
  co_idx : idx c = Z.of_nat (elements xs);
  co_executors : executors c = map (executor_at r xs) (seq 0 (width r * elements xs));
  co_values : exists extra, values c = entries r xs ++ extra /\ extra_ok (at_phase c) extra;
  co_remaining : remaining c = base (at_phase c) + Z.of_nat (unsettled r xs);
  co_ended : has_ended xs = match at_phase c with ENDED => true | _ => false end;
  co_thrown : thrown xs = match at_phase c with THROWN => true | _ => false end;
  co_calls : List.filter is_own (calls c) = combined r xs;
  co_handed : List.filter (fun x => negb (is_own x)) (calls c) = handed xs;
  co_known : forall j, (width r * elements xs <= j)%nat -> first_argument j xs = None;
  co_end : end_throws r xs = true -> has_ended xs = true /\ all_settled r xs = true
}.

Lemma first_argument_app (i : nat) (xs ys : list combine) : first_argument i (xs ++ ys) = match first_argument i xs with Some v => Some v | None => first_argument i ys end.
Proof. induction xs as [|[] xs IH]; cbn; auto; destruct (i =? i0)%nat; auto. Qed.

Lemma elements_app (xs ys : list combine) : elements (xs ++ ys) = (elements xs + elements ys)%nat.
Proof. unfold elements; rewrite List.filter_app, length_app; reflexivity. Qed.

Lemma elements_le (xs : list combine) : (elements xs <= length xs)%nat.
Proof. unfold elements; apply List.filter_length_le. Qed.

Lemma handed_app (xs ys : list combine) : handed (xs ++ ys) = handed xs ++ handed ys.
Proof. induction xs as [|[] xs IH]; cbn; rewrite ?IH; reflexivity. Qed.

Lemma unsettled_le (r : routine) (xs : list combine) : (unsettled r xs <= elements xs)%nat.
Proof. unfold unsettled; etransitivity; [apply List.filter_length_le | rewrite length_seq; lia]. Qed.

Lemma unsettled_none (r : routine) (xs : list combine) : unsettled r xs = 0%nat <-> all_settled r xs = true.
Proof.
  unfold unsettled, all_settled; generalize (seq 0 (elements xs)); intros l; induction l as [|i l IH]; [cbn; tauto|]; cbn; destruct (is_settled r xs i); cbn; [exact IH | split; discriminate].
Qed.

Lemma end_throws_snoc (r : routine) (xs : list combine) (x : combine) :
  end_throws r (xs ++ [x]) = (end_throws r xs || match x with ITERATOR_DONE true => all_settled r xs | _ => false end)%bool.
Proof.
  unfold end_throws; rewrite length_app; cbn [length]; rewrite Nat.add_1_r, seq_S, existsb_app; f_equal.
  - apply eq_true_iff_eq; rewrite !existsb_exists; split; intros (n & Hn & H); exists n; (split; [exact Hn|]); apply in_seq in Hn; revert H; rewrite lookup_app_l, take_app_le by lia; auto.
  - cbn; rewrite orb_false_r, list_lookup_middle, take_app_length by reflexivity; reflexivity.
Qed.

(** What depends on the first arguments only *)
Lemma outcome_same (r : routine) (xs ys : list combine) : (forall j, first_argument j ys = first_argument j xs) -> forall i, outcome r ys i = outcome r xs i.
Proof. intros H i; unfold outcome; rewrite !H; reflexivity. Qed.

Lemma is_settled_same (r : routine) (xs ys : list combine) (i : nat) : outcome r ys i = outcome r xs i -> is_settled r ys i = is_settled r xs i.
Proof. intros H; unfold is_settled; rewrite H; reflexivity. Qed.

Lemma entry_at_same (r : routine) (xs ys : list combine) (i : nat) : outcome r ys i = outcome r xs i -> entry_at r ys i = entry_at r xs i.
Proof. intros H; unfold entry_at; rewrite H; reflexivity. Qed.

Lemma executor_at_same (r : routine) (xs ys : list combine) (j : nat) : first_argument j ys = first_argument j xs -> executor_at r ys j = executor_at r xs j.
Proof. intros H; unfold executor_at, is_called; rewrite H; reflexivity. Qed.

Section SameCalls.
  Context (r : routine) (xs ys : list combine) (Hf : forall j, first_argument j ys = first_argument j xs) (Hn : elements ys = elements xs).

Lemma entries_same : entries r ys = entries r xs.
  Proof. unfold entries; rewrite Hn; apply map_ext; intros i; apply entry_at_same, outcome_same, Hf. Qed.

Lemma all_settled_same : all_settled r ys = all_settled r xs.
  Proof. unfold all_settled; rewrite Hn; induction (seq 0 (elements xs)) as [|i l IH]; [reflexivity|]; cbn; rewrite IH, (is_settled_same r xs ys) by apply (outcome_same r xs ys Hf); reflexivity. Qed.

Lemma unsettled_same : unsettled r ys = unsettled r xs.
  Proof. unfold unsettled; rewrite Hn; f_equal; apply List.filter_ext; intros i; rewrite (is_settled_same r xs ys) by apply (outcome_same r xs ys Hf); reflexivity. Qed.
End SameCalls.

Lemma snoc_flags (xs : list combine) (x : combine) :
  has_ended (xs ++ [x]) = (has_ended xs || match x with ITERATOR_DONE _ => true | _ => false end)%bool /\
  iterator_has_thrown (xs ++ [x]) = (iterator_has_thrown xs || match x with ITERATOR_THROWS => true | _ => false end)%bool /\
  has_thrown (xs ++ [x]) = (has_thrown xs || match x with THROWS => true | _ => false end)%bool.
Proof. unfold has_ended, iterator_has_thrown, has_thrown; rewrite !existsb_app; cbn; rewrite !orb_false_r; auto. Qed.

Lemma combined_open (r : routine) (xs : list combine) : thrown xs = false -> has_ended xs = false -> combined r xs = [].
Proof. unfold thrown, combined; intros A B; apply orb_false_elim in A as [A A']; rewrite A, A', B; reflexivity. Qed.

(** Choices that neither end nor leave the loop and change no first argument *)
Lemma combined_same (r : routine) (xs : list combine) (x : combine) :
  (forall j, first_argument j (xs ++ [x]) = first_argument j xs) -> match x with PROMISE_RESOLVED | ITERATOR_DONE _ | ITERATOR_THROWS | THROWS => false | _ => true end = true -> combined r (xs ++ [x]) = combined r xs.
Proof.
  intros Hf Hx; destruct (snoc_flags xs x) as (F1 & F2 & F3); assert (Hn : elements (xs ++ [x]) = elements xs) by (rewrite elements_app; destruct x; cbn; (lia || discriminate)).
  unfold combined; rewrite F1, F2, F3, end_throws_snoc, (entries_same r xs _ Hf Hn), (all_settled_same r xs _ Hf Hn); destruct x; try discriminate Hx; rewrite !orb_false_r; reflexivity.
Qed.

Lemma first_argument_other (xs : list combine) (x : combine) : match x with ELEMENT _ _ => false | _ => true end = true -> forall j, first_argument j (xs ++ [x]) = first_argument j xs.
Proof. intros H j; rewrite first_argument_app; destruct (first_argument j xs); [reflexivity|]; destruct x; (reflexivity || discriminate). Qed.

Section Combining.
  Context (r : routine) (xs : list combine) (c : combinator) (H : combined_ok r xs c).

(** A step that changes no first argument and creates no function *)
Lemma step_combined (x : combine) (c' : combinator) :
  (forall j, first_argument j (xs ++ [x]) = first_argument j xs) -> x <> PROMISE_RESOLVED -> idx c' = idx c -> executors c' = executors c ->
  (exists extra, values c' = entries r xs ++ extra /\ extra_ok (at_phase c') extra) -> remaining c' = base (at_phase c') + Z.of_nat (unsettled r xs) ->
  has_ended (xs ++ [x]) = match at_phase c' with ENDED => true | _ => false end -> thrown (xs ++ [x]) = match at_phase c' with THROWN => true | _ => false end ->
  List.filter is_own (calls c') = combined r (xs ++ [x]) -> List.filter (fun x => negb (is_own x)) (calls c') = handed (xs ++ [x]) ->
  combined_ok r (xs ++ [x]) c'.
  Proof.
    intros Hf Hx H1' H2' H3' H4' H5' H6' H7' H8'; destruct H as [H1 H2 H3 H4 H5 H6 H7 H8 H9 H0].
    assert (Hn : elements (xs ++ [x]) = elements xs) by (rewrite elements_app; destruct x; cbn; (lia || congruence)).
    constructor; rewrite ?Hn, ?(entries_same r xs _ Hf Hn), ?(unsettled_same r xs _ Hf Hn); auto; [congruence | | |].
    - rewrite H2', H2; apply map_ext; intros j; symmetry; apply executor_at_same, Hf.
    - intros j Hj; rewrite Hf; apply H9, Hj.
    - destruct (snoc_flags xs x) as (F1 & _); rewrite end_throws_snoc, F1, (all_settled_same r xs _ Hf Hn); intros K; apply orb_prop in K as [K|K]; [destruct (H0 K) as [-> ->]; auto | destruct x as [| |[|]| | | | |]; try discriminate; rewrite K, orb_true_r; auto].
  Qed.

Lemma handed_none (x : combine) : match x with HANDED _ => false | _ => true end = true -> handed (xs ++ [x]) = handed xs.
  Proof. intros Hx; rewrite handed_app; destruct x; try discriminate Hx; apply app_nil_r. Qed.

Lemma open_flags : match at_phase c with ENDED | THROWN => false | _ => true end = true -> thrown xs = false /\ has_ended xs = false /\ combined r xs = [] /\ base (at_phase c) = 1.
  Proof.
    intros Hp; assert (A : thrown xs = false) by (rewrite (co_thrown _ _ _ H); destruct (at_phase c); (reflexivity || discriminate)); assert (B : has_ended xs = false) by (rewrite (co_ended _ _ _ H); destruct (at_phase c); (reflexivity || discriminate)).
    splits; auto; [apply combined_open; assumption | destruct (at_phase c); (reflexivity || discriminate)].
  Qed.

(** The loop goes on *)
Lemma next_combined (x : combine) (p : phase) (extra : list entry) :
  match x with RETURNS | ITERATOR_VALUE => true | _ => false end = true -> match at_phase c with ENDED | THROWN | RESOLVES => false | _ => true end = true ->
  match p with ENDED | THROWN => false | _ => true end = true -> extra_ok p extra ->
  combined_ok r (xs ++ [x]) (mk_combinator p (idx c) (remaining c) (values c ++ extra) (executors c) (calls c)).
  Proof.
    intros Hx Hp Hp' He; destruct (open_flags ltac:(destruct (at_phase c); (reflexivity || discriminate))) as (A & B & C & D); destruct (snoc_flags xs x) as (F1 & F2 & F3).
    destruct (co_values _ _ _ H) as (e & Hv & He'); assert (e = []) by (destruct (at_phase c); (exact He' || discriminate)); subst e.
    assert (Hf : forall j, first_argument j (xs ++ [x]) = first_argument j xs) by (apply first_argument_other; destruct x; (reflexivity || discriminate)).
    apply step_combined; cbn [at_phase idx remaining values executors calls]; auto.
    - intros ->; discriminate.
    - exists extra; split; [rewrite Hv, app_nil_r; reflexivity | exact He].
    - rewrite (co_remaining _ _ _ H), D; destruct p; (reflexivity || discriminate).
    - rewrite F1, B; destruct x, p; (reflexivity || discriminate).
    - unfold thrown in *; rewrite F2, F3; apply orb_false_elim in A as [-> ->]; destruct x, p; (reflexivity || discriminate).
    - rewrite (co_calls _ _ _ H); symmetry; apply combined_same; [exact Hf | destruct x; (reflexivity || discriminate)].
    - rewrite (co_handed _ _ _ H); symmetry; apply handed_none; destruct x; (reflexivity || discriminate).
  Qed.

(** An exception leaves the loop *)
Lemma throw_combined (is_done : bool) : match at_phase c with ENDED | THROWN => false | _ => true end = true ->
    combined_ok r (xs ++ [if is_done then ITERATOR_THROWS else THROWS]) (helper_error is_done c).
  Proof.
    intros Hp; destruct (open_flags Hp) as (A & B & C & D); set (x := if is_done then ITERATOR_THROWS else THROWS); destruct (snoc_flags xs x) as (F1 & F2 & F3); destruct (co_values _ _ _ H) as (e & Hv & _).
    assert (Hf : forall j, first_argument j (xs ++ [x]) = first_argument j xs) by (apply first_argument_other; unfold x; destruct is_done; reflexivity).
    pose proof A as A'; unfold thrown in A'; apply orb_false_elim in A' as [A1 A2].
    apply step_combined; cbn [helper_error set_phase log_calls at_phase idx remaining values executors calls]; auto.
    - unfold x; destruct is_done; discriminate.
    - exists e; split; [exact Hv | exact I].
    - rewrite (co_remaining _ _ _ H), D; reflexivity.
    - rewrite F1, B; unfold x; destruct is_done; reflexivity.
    - unfold thrown; rewrite F2, F3, A1, A2; unfold x; destruct is_done; reflexivity.
    - rewrite List.filter_app, (co_calls _ _ _ H), C; unfold combined; rewrite F2, F3, A1, A2; unfold x; destruct is_done; reflexivity.
    - rewrite List.filter_app, (co_handed _ _ _ H), handed_none by (unfold x; destruct is_done; reflexivity); destruct is_done; apply app_nil_r.
  Qed.

Lemma handed_combined (args : list value) : combined_ok r (xs ++ [HANDED args]) (log_calls [BY_THEN args] c).
  Proof.
    destruct (snoc_flags xs (HANDED args)) as (F1 & F2 & F3); assert (Hf : forall j, first_argument j (xs ++ [HANDED args]) = first_argument j xs) by (apply first_argument_other; reflexivity).
    apply step_combined; cbn [log_calls at_phase idx remaining values executors calls]; auto; try discriminate; try solve [apply (co_values _ _ _ H) | apply (co_remaining _ _ _ H)].
    - rewrite F1, orb_false_r; apply (co_ended _ _ _ H).
    - unfold thrown; rewrite F2, F3, !orb_false_r; apply (co_thrown _ _ _ H).
    - rewrite List.filter_app, (co_calls _ _ _ H), combined_same by auto; apply app_nil_r.
    - rewrite List.filter_app, (co_handed _ _ _ H), handed_app; reflexivity.
  Qed.

(** A further call of an element function does nothing *)
Lemma called_combined (j : nat) (args : list value) : is_called xs j = true -> combined_ok r (xs ++ [ELEMENT j args]) c.
  Proof.
    intros Hc; destruct (snoc_flags xs (ELEMENT j args)) as (F1 & F2 & F3).
    assert (Hf : forall k, first_argument k (xs ++ [ELEMENT j args]) = first_argument k xs).
    { intros k; rewrite first_argument_app; destruct (first_argument k xs) eqn:E; [reflexivity|]; cbn; destruct (Nat.eqb_spec k j) as [->|_]; [unfold is_called in Hc; rewrite E in Hc; discriminate | reflexivity]. }
    apply step_combined; auto; try discriminate; try solve [apply (co_values _ _ _ H) | apply (co_remaining _ _ _ H)].
    - rewrite F1, orb_false_r; apply (co_ended _ _ _ H).
    - unfold thrown; rewrite F2, F3, !orb_false_r; apply (co_thrown _ _ _ H).
    - rewrite combined_same by auto; apply (co_calls _ _ _ H).
    - rewrite handed_none by reflexivity; apply (co_handed _ _ _ H).
  Qed.

Hypothesis room : Z.of_nat (elements xs) + 1 <= ECMA_INTEGER_NUMBER_MAX.

(** The counter is in range *)
Lemma remaining_changes (is_inc : bool) (c1 : combinator) : remaining c1 = remaining c -> (is_inc = false -> 1 <= remaining c) ->
    ecma_promise_remaining_inc_or_dec is_inc c1 = Some (set_remaining (if is_inc then remaining c + 1 else remaining c - 1) c1).
  Proof.
    intros E Hpos; unfold ecma_promise_remaining_inc_or_dec; rewrite E; pose proof (unsettled_le r xs) as HU; pose proof (co_remaining _ _ _ H) as HR; unfold ECMA_INTEGER_NUMBER_MAX in *.
    assert (Hb : 0 <= base (at_phase c) <= 1) by (destruct (at_phase c); cbn; lia).
    destruct ((0 <=? remaining c) && _) eqn:B; [|apply andb_false_iff in B as [B|B]; apply Z.leb_gt in B; lia].
    do 2 f_equal; destruct is_inc; unfold u32; [rewrite Z.mod_small; lia | specialize (Hpos eq_refl); rewrite Z.mod_small; lia].
  Qed.
End Combining.

(** ** A promise is resolved, and the iterator ends *)

Lemma functions_of (r : routine) (n : nat) : seq 0 (width r * S n) = seq 0 (width r * n) ++ seq (width r * n) (width r).
Proof. replace (width r * S n)%nat with (width r * n + width r)%nat by lia; rewrite seq_app; reflexivity. Qed.

Lemma outcome_unknown (r : routine) (xs : list combine) (n i : nat) : (forall j, (width r * n <= j)%nat -> first_argument j xs = None) -> (n <= i)%nat -> outcome r xs i = None.
Proof. intros Hk Hi; unfold outcome; destruct r; cbn [width] in Hk; rewrite ?Hk by lia; reflexivity. Qed.

Lemma new_executors_at (r : routine) (xs : list combine) (n : nat) : (forall j, (width r * n <= j)%nat -> first_argument j xs = None) ->
  map (executor_at r xs) (seq (width r * n) (width r)) = new_executors r (Z.of_nat n + 1).
Proof.
  intros Hk; unfold executor_at, is_called.
  destruct r; cbn [width seq map new_executors kind_of] in *; rewrite !Hk by lia; rewrite ?Nat.mul_1_l, ?Nat.div_1_r; try reflexivity.
  replace (2 * n / 2)%nat with n by (symmetry; rewrite Nat.mul_comm; apply Nat.div_mul; lia); replace (S (2 * n) / 2)%nat with n by (apply (Nat.div_unique _ 2 n 1); lia).
  replace (Nat.even (2 * n)) with true by (symmetry; apply Nat.even_spec; exists n; lia); replace (Nat.even (S (2 * n))) with false; [reflexivity|].
  symmetry; rewrite Nat.even_succ, <- Nat.negb_even; apply negb_false_iff, Nat.even_spec; exists n; lia.
Qed.

Section Growing.
  Context (r : routine) (xs : list combine) (c : combinator) (H : combined_ok r xs c) (room : Z.of_nat (elements xs) + 1 <= ECMA_INTEGER_NUMBER_MAX).

Lemma promise_combined : at_phase c = RESOLVES -> exists c', perform_promise r c = Some c' /\ combined_ok r (xs ++ [PROMISE_RESOLVED]) c'.
  Proof.
    intros Hp; destruct (open_flags r xs c H) as (A & B & C & D); [rewrite Hp; reflexivity|]; destruct (snoc_flags xs PROMISE_RESOLVED) as (F1 & F2 & F3); pose proof (co_known _ _ _ H) as HK.
    assert (Hf : forall j, first_argument j (xs ++ [PROMISE_RESOLVED]) = first_argument j xs) by (apply first_argument_other; reflexivity).
    assert (Hn : elements (xs ++ [PROMISE_RESOLVED]) = S (elements xs)) by (rewrite elements_app; cbn; lia).
    pose proof (outcome_same r xs _ Hf) as Ho; pose proof (outcome_unknown r xs (elements xs) (elements xs) HK ltac:(lia)) as Hnew.
    destruct (co_values _ _ _ H) as (e & Hv & He); rewrite Hp in He; cbn in He; subst e.
    unfold perform_promise; destruct (_ =? _) eqn:E; [apply Z.eqb_eq in E; rewrite (co_idx _ _ _ H) in E; unfold ECMA_INTEGER_NUMBER_MAX in room; lia|].
    erewrite (remaining_changes r xs c H room true) by (reflexivity || discriminate); eexists; split; [reflexivity|].
    constructor; cbn [set_remaining idx executors values at_phase remaining calls]; rewrite ?Hn, ?F1, ?orb_false_r.
    - rewrite (co_idx _ _ _ H); lia.
    - rewrite functions_of, map_app, (co_executors _ _ _ H), (co_idx _ _ _ H); f_equal.
      + apply map_ext; intros j; symmetry; apply executor_at_same, Hf.
      + rewrite <- (new_executors_at r xs) by exact HK; apply map_ext; intros j; symmetry; apply executor_at_same, Hf.
    - exists []; split; [|reflexivity]; rewrite app_nil_r, Hv; unfold entries; rewrite Hn, seq_S, map_app; f_equal.
      + apply map_ext; intros i; symmetry; apply entry_at_same, Ho.
      + cbn [map Nat.add]; unfold entry_at; rewrite Ho, Hnew; reflexivity.
    - rewrite (co_remaining _ _ _ H), D; unfold unsettled; rewrite Hn, seq_S, List.filter_app, length_app; cbn [List.filter Nat.add]; rewrite (List.filter_ext (fun i => negb (is_settled r (xs ++ [PROMISE_RESOLVED]) i)) (fun i => negb (is_settled r xs i)) (fun i => f_equal negb (is_settled_same r xs _ i (Ho i)))).
      replace (is_settled r (xs ++ [PROMISE_RESOLVED]) (elements xs)) with false by (unfold is_settled; rewrite Ho, Hnew; reflexivity); cbn [negb length base]; lia.
    - exact B.
    - unfold thrown in *; rewrite F2, F3, !orb_false_r; exact A.
    - rewrite (co_calls _ _ _ H), C; symmetry; apply combined_open; [unfold thrown in *; rewrite F2, F3, !orb_false_r; exact A | rewrite F1, B; reflexivity].
    - rewrite (handed_none xs) by reflexivity; apply (co_handed _ _ _ H).
    - intros j Hj; rewrite Hf; apply HK; lia.
    - rewrite end_throws_snoc, orb_false_r; intros K; apply (co_end _ _ _ H) in K; destruct K; congruence.
  Qed.

Lemma done_combined (t : bool) : at_phase c = ITERATES -> exists c', perform_done r t c = Some c' /\ combined_ok r (xs ++ [ITERATOR_DONE t]) c'.
  Proof.
    intros Hp; destruct (open_flags r xs c H) as (A & B & C & D); [rewrite Hp; reflexivity|]; destruct (snoc_flags xs (ITERATOR_DONE t)) as (F1 & F2 & F3).
    assert (Hf : forall j, first_argument j (xs ++ [ITERATOR_DONE t]) = first_argument j xs) by (apply first_argument_other; reflexivity).
    assert (Hn : elements (xs ++ [ITERATOR_DONE t]) = elements xs) by (rewrite elements_app; cbn; lia).
    destruct (co_values _ _ _ H) as (e & Hv & He); rewrite Hp in He; cbn in He; subst e; rewrite app_nil_r in Hv; pose proof (co_remaining _ _ _ H) as HR; rewrite D in HR.
    pose proof A as A'; unfold thrown in A'; apply orb_false_elim in A' as [A1 A2].
    assert (HT : end_throws r xs = false) by (apply not_true_iff_false; intros K; apply (co_end _ _ _ H) in K; destruct K; congruence).
    assert (HC : combined r (xs ++ [ITERATOR_DONE t]) = if all_settled r xs then match r with ECMA_PROMISE_ROUTINE_ANY => [REJECT_WITH (entries r xs)] | _ => RESOLVE_WITH (entries r xs) :: (if t then [ABRUPT] else []) end else []).
    { unfold combined; rewrite F1, F2, F3, A1, A2, B, end_throws_snoc, HT, (entries_same r xs _ Hf Hn), (all_settled_same r xs _ Hf Hn); cbn [orb andb]; destruct (all_settled r xs); [|reflexivity]; destruct t; reflexivity. }
    unfold perform_done; erewrite (remaining_changes r xs c H room false) by (reflexivity || intros; lia); rewrite HR; replace (1 + Z.of_nat (unsettled r xs) - 1) with (Z.of_nat (unsettled r xs)) by lia.
    cbn [set_phase set_remaining remaining]; destruct (_ =? 0) eqn:E; eexists; (split; [reflexivity|]);
      (apply (step_combined r xs c H); cbn [set_phase set_remaining log_calls at_phase idx remaining values executors calls]; auto; try discriminate;
       [exists []; rewrite app_nil_r; split; [exact Hv | reflexivity] | rewrite F1; apply orb_true_r | unfold thrown; rewrite F2, F3, A1, A2; reflexivity | rewrite HC | rewrite handed_none by reflexivity]).
    - assert (Hs : all_settled r xs = true) by (apply unsettled_none; apply Z.eqb_eq in E; lia); rewrite Hs, List.filter_app, (co_calls _ _ _ H), C; cbn [values]; rewrite Hv; destruct r, t; reflexivity.
    - rewrite List.filter_app, (co_handed _ _ _ H); destruct r, t; apply app_nil_r.
    - destruct (all_settled r xs) eqn:Es; [apply unsettled_none in Es; apply Z.eqb_neq in E; lia|]; rewrite (co_calls _ _ _ H); exact C.
    - apply (co_handed _ _ _ H).
  Qed.
End Growing.

(** ** A call of an element function *)

Lemma insert_seq {A} (f g : nat -> A) (n i : nat) : (i < n)%nat -> (forall j, j <> i -> g j = f j) -> <[i := g i]> (map f (seq 0 n)) = map g (seq 0 n).
Proof.
  intros Hi Hg; apply list_eq; intros j; change (map f (seq 0 n)) with (f <$> seq 0 n); change (map g (seq 0 n)) with (g <$> seq 0 n).
  destruct (decide (j = i)) as [->|Hne].
  - rewrite list_lookup_insert_eq by (rewrite length_fmap, length_seq; exact Hi); rewrite list_lookup_fmap, lookup_seq_lt by exact Hi; reflexivity.
  - rewrite list_lookup_insert_ne by congruence; rewrite !list_lookup_fmap; destruct (decide (j < n)%nat) as [Hj|Hj]; [rewrite lookup_seq_lt by exact Hj; cbn; rewrite Hg by exact Hne; reflexivity | rewrite lookup_seq_ge by lia; reflexivity].
Qed.

(** One place of a sequence changes from true to false *)
Lemma filter_seq_change (f g : nat -> bool) (n i : nat) : (i < n)%nat -> (forall j, j <> i -> g j = f j) -> f i = true -> g i = false -> length (List.filter f (seq 0 n)) = S (length (List.filter g (seq 0 n))).
Proof.
  intros Hi Hg Hf Hgi; replace n with (i + S (n - S i))%nat by lia; rewrite seq_app, !List.filter_app, !length_app; cbn [seq List.filter Nat.add]; rewrite Hf, Hgi; cbn [length].
  rewrite (List.filter_ext_in g f (seq 0 i)), (List.filter_ext_in g f (seq (S i) (n - S i))); [lia | |]; intros j Hj; apply in_seq in Hj; apply Hg; lia.
Qed.

Definition argument (args : list value) : value := match args with a :: _ => a | [] => UNDEFINED end.

Lemma first_argument_call (xs : list combine) (j k : nat) (args : list value) : first_argument j xs = None ->
  first_argument k (xs ++ [ELEMENT j args]) = if (k =? j)%nat then Some (argument args) else first_argument k xs.
Proof. intros Hc; rewrite first_argument_app; destruct (first_argument k xs) eqn:E; cbn; destruct (Nat.eqb_spec k j) as [->|_]; (reflexivity || congruence). Qed.

(** The function j belongs to the promise at place j / width *)
Lemma outcome_call (r : routine) (xs : list combine) (j i : nat) (args : list value) : first_argument j xs = None -> outcome r xs (j / width r) = None ->
  outcome r (xs ++ [ELEMENT j args]) i = if (i =? j / width r)%nat then Some (entry_of (kind_of r j) (argument args)) else outcome r xs i.
Proof.
  intros Hc Ho; unfold outcome in *; destruct r; cbn [width kind_of] in *; rewrite ?Nat.div_1_r in *; rewrite !first_argument_call by exact Hc; try (destruct (i =? j)%nat; reflexivity).
  pose proof (Nat.div_mod j 2 ltac:(lia)) as Hj; pose proof (Nat.mod_upper_bound j 2 ltac:(lia)) as Hr; set (q := (j / 2)%nat) in *.
  assert (Hpar : Nat.even j = (j mod 2 =? 0)%nat) by (destruct (Nat.eqb_spec (j mod 2) 0) as [E|E]; [apply Nat.even_spec; exists q; lia | rewrite <- Nat.negb_odd; apply negb_false_iff, Nat.odd_spec; exists q; lia]).
  rewrite Hpar; destruct (Nat.eqb_spec (2 * i) j), (Nat.eqb_spec (2 * i + 1) j), (Nat.eqb_spec i q), (Nat.eqb_spec (j mod 2) 0); try lia; try reflexivity.
  subst i; destruct (first_argument (2 * q) xs); [discriminate | reflexivity].
Qed.

Section Element.
  Context (r : routine) (xs : list combine) (c : combinator) (H : combined_ok r xs c) (room : Z.of_nat (elements xs) + 1 <= ECMA_INTEGER_NUMBER_MAX).
  Context (j : nat) (args : list value) (Hj : (j < width r * elements xs)%nat) (Hc : first_argument j xs = None) (Ho : outcome r xs (j / width r) = None).

#[local] Notation ys := (xs ++ [ELEMENT j args]).
#[local] Notation i := (j / width r)%nat.

Lemma place_in_range : (i < elements xs)%nat.
  Proof. apply Nat.Div0.div_lt_upper_bound; destruct r; cbn [width] in *; lia. Qed.

Lemma elements_call : elements ys = elements xs.
  Proof. rewrite elements_app; cbn; lia. Qed.

Lemma executors_call : <[j := mk_executor (kind_of r j) 0]> (executors c) = map (executor_at r ys) (seq 0 (width r * elements ys)).
  Proof.
    rewrite (co_executors _ _ _ H), elements_call; replace (mk_executor (kind_of r j) 0) with (executor_at r ys j) by (unfold executor_at, is_called; rewrite first_argument_call, Nat.eqb_refl by exact Hc; reflexivity).
    apply insert_seq; [exact Hj|]; intros k Hk; apply executor_at_same; rewrite first_argument_call by exact Hc; apply Nat.eqb_neq in Hk; rewrite Hk; reflexivity.
  Qed.

Lemma values_call (extra : list entry) : values c = entries r xs ++ extra -> <[i := entry_of (kind_of r j) (argument args)]> (values c) = entries r ys ++ extra.
  Proof.
    intros Hv; pose proof place_in_range as Hi; rewrite Hv, insert_app_l by (unfold entries; rewrite length_map, length_seq; exact Hi); f_equal; unfold entries; rewrite elements_call.
    replace (entry_of (kind_of r j) (argument args)) with (entry_at r ys i) by (unfold entry_at; rewrite outcome_call, Nat.eqb_refl by assumption; reflexivity).
    apply insert_seq; [exact Hi|]; intros k Hk; apply entry_at_same; rewrite outcome_call by assumption; apply Nat.eqb_neq in Hk; rewrite Hk; reflexivity.
  Qed.

Lemma unsettled_call : unsettled r xs = S (unsettled r ys).
  Proof.
    unfold unsettled; rewrite elements_call; apply (filter_seq_change _ _ _ i); [exact place_in_range | | |].
    - intros k Hk; f_equal; apply is_settled_same; rewrite outcome_call by assumption; apply Nat.eqb_neq in Hk; rewrite Hk; reflexivity.
    - unfold is_settled; rewrite Ho; reflexivity.
    - unfold is_settled; rewrite outcome_call, Nat.eqb_refl by assumption; reflexivity.
  Qed.

(** The first call of an element function of a promise stores its outcome, and calls the capability when it was the last *)
Lemma element_combined : exists c', ecma_promise_all_or_all_settled_handler_cb j args c = Some c' /\ combined_ok r ys c'.
  Proof.
    destruct (snoc_flags xs (ELEMENT j args)) as (F1 & F2 & F3); rewrite orb_false_r in F1, F2, F3; pose proof unsettled_call as HU; pose proof (co_remaining _ _ _ H) as HR; destruct (co_values _ _ _ H) as (e & Hv & He).
    assert (Hx : executors c !! j = Some (mk_executor (kind_of r j) (Z.of_nat i + 1))).
    { rewrite (co_executors _ _ _ H); change (map ?f ?l) with (f <$> l); rewrite list_lookup_fmap, lookup_seq_lt by exact Hj; cbn; unfold executor_at, is_called; rewrite Hc; reflexivity. }
    assert (Hns : all_settled r xs = false) by (destruct (all_settled r xs) eqn:E; [apply unsettled_none in E; lia | reflexivity]).
    assert (HA : match at_phase c with ENDED => combined r xs = [] | _ => combined r xs = combined r ys end).
    { assert (HE : at_phase c <> ENDED -> combined r xs = combined r ys) by (intros K; unfold combined; rewrite F1, F2, F3, (co_ended _ _ _ H); destruct (at_phase c); (reflexivity || contradiction)).
      destruct (at_phase c) eqn:Ep; try (apply HE; discriminate); pose proof (co_thrown _ _ _ H) as HT; rewrite Ep in HT; unfold thrown in HT; apply orb_false_elim in HT as [T1 T2]; unfold combined; rewrite T1, T2, Hns, andb_false_r; reflexivity. }
    assert (HT' : end_throws r ys = false) by (rewrite end_throws_snoc, orb_false_r; apply not_true_iff_false; intros K; apply (co_end _ _ _ H) in K; destruct K; congruence).
    unfold ecma_promise_all_or_all_settled_handler_cb; rewrite Hx; fold (argument args); cbn [index type_of]; replace (Z.of_nat i + 1 =? 0) with false by (symmetry; apply Z.eqb_neq; lia); replace (Z.to_nat (Z.of_nat i + 1 - 1)) with i by lia.
    rewrite (values_call e Hv); cbn [set_values set_executors executors]; rewrite executors_call; erewrite (remaining_changes r xs c H room false) by (reflexivity || (intros; destruct (at_phase c); cbn in HR; lia)).
    cbn [set_remaining remaining set_executors set_values values]; replace (remaining c - 1) with (base (at_phase c) + Z.of_nat (unsettled r ys)) by lia.
    destruct (base (at_phase c) + Z.of_nat (unsettled r ys) =? 0) eqn:E; eexists; (split; [reflexivity|]); constructor; cbn [log_calls set_remaining set_executors set_values idx executors values at_phase remaining calls]; rewrite ?F1, ?elements_call; unfold thrown; rewrite ?F2, ?F3;
      try solve [apply (co_idx _ _ _ H) | rewrite elements_call; reflexivity | reflexivity | exists e; auto | apply (co_ended _ _ _ H) | apply (co_thrown _ _ _ H) | intros k Hk; rewrite first_argument_call by exact Hc; destruct (Nat.eqb_spec k j); [lia | apply (co_known _ _ _ H), Hk] | rewrite HT'; discriminate].
    - apply Z.eqb_eq in E; destruct (at_phase c) eqn:Ep; cbn [base] in E; try lia; pose proof (co_thrown _ _ _ H) as HT; rewrite Ep in HT; unfold thrown in HT; apply orb_false_elim in HT as [T1 T2]; cbn in He; subst e; rewrite app_nil_r.
      assert (Hs : all_settled r ys = true) by (apply unsettled_none; lia); pose proof (co_ended _ _ _ H) as HE; rewrite Ep in HE.
      rewrite List.filter_app, (co_calls _ _ _ H), HA; unfold combined; rewrite F1, F2, F3, T1, T2, HE, Hs, HT'.
      destruct r, (Nat.even j) eqn:Ev; cbn [kind_of]; rewrite ?Ev; reflexivity.
    - rewrite List.filter_app, (co_handed _ _ _ H), handed_none by reflexivity; destruct (kind_of r j); apply app_nil_r.
    - rewrite (co_calls _ _ _ H); destruct (at_phase c) eqn:Ep; try exact HA.
      rewrite HA; unfold combined; pose proof (co_thrown _ _ _ H) as HT; rewrite Ep in HT; unfold thrown in HT; apply orb_false_elim in HT as [T1 T2]; rewrite F2, F3, T1, T2.
      destruct (all_settled r ys) eqn:Es; [apply unsettled_none in Es; apply Z.eqb_neq in E; cbn in E; lia | rewrite andb_false_r; reflexivity].
    - rewrite handed_none by reflexivity; apply (co_handed _ _ _ H).
  Qed.
End Element.

(** ** Functions then that call one element function *)

Lemma is_called_app (xs ys : list combine) (i : nat) : is_called xs i = true -> is_called (xs ++ ys) i = true.
Proof. unfold is_called; rewrite first_argument_app; destruct (first_argument i xs); [reflexivity | discriminate]. Qed.

Lemma settles_once_before (r : routine) (xs ys : list combine) : settles_once r (xs ++ ys) = true -> settles_once r xs = true.
Proof.
  destruct r; try reflexivity; unfold settles_once; rewrite !forallb_forall; intros H i Hi; apply in_seq in Hi.
  specialize (H i ltac:(apply in_seq; rewrite elements_app; lia)); revert H; rewrite !negb_true_iff, !andb_false_iff.
  intros [H|H]; [left | right]; apply not_true_iff_false; intros K; apply (is_called_app _ ys) in K; congruence.
Qed.

Lemma settles_once_outcome (r : routine) (xs : list combine) (j : nat) (args : list value) :
  settles_once r (xs ++ [ELEMENT j args]) = true -> first_argument j xs = None -> (j < width r * elements xs)%nat -> outcome r xs (j / width r) = None.
Proof.
  intros H Hc Hj; unfold outcome; destruct r; cbn [width] in *; rewrite ?Nat.div_1_r; try (rewrite Hc; reflexivity).
  assert (Hq : (j / 2 < elements xs)%nat) by (apply Nat.Div0.div_lt_upper_bound; lia); pose proof (Nat.div_mod j 2 ltac:(lia)) as Hd; pose proof (Nat.mod_upper_bound j 2 ltac:(lia)) as Hr; set (q := (j / 2)%nat) in *.
  unfold settles_once in H; rewrite forallb_forall in H; specialize (H q ltac:(apply in_seq; rewrite elements_app; lia)); unfold is_called in H; rewrite !first_argument_call in H by exact Hc.
  destruct (Nat.eqb_spec (2 * q) j) as [Ej|Ej], (Nat.eqb_spec (2 * q + 1) j) as [Ek|Ek]; try lia.
  - replace (first_argument (2 * q) xs) with (@None value) by congruence; destruct (first_argument (2 * q + 1) xs); [discriminate H | reflexivity].
  - replace (first_argument (2 * q + 1) xs) with (@None value) by congruence; destruct (first_argument (2 * q) xs); [discriminate H | reflexivity].
Qed.

(** ** The claims *)

Lemma start_combined (r : routine) : combined_ok r [] perform_start.
Proof. constructor; try reflexivity; [rewrite Nat.mul_0_r; reflexivity | exists []; split; reflexivity | discriminate]. Qed.

Lemma combine_step_ok (r : routine) (x : combine) (xs : list combine) (c : combinator) :
  combined_ok r xs c -> combine_may r x c = true -> settles_once r (xs ++ [x]) = true -> Z.of_nat (elements xs) + 1 <= ECMA_INTEGER_NUMBER_MAX ->
  exists c', combine_step r x c = Some c' /\ combined_ok r (xs ++ [x]) c'.
Proof.
  intros H Hm Ho Hn; destruct x; cbn [combine_may combine_step] in *.
  - eexists; split; [reflexivity|]; pose proof (next_combined r xs c H RETURNS (match at_phase c with OPENS => STARTS | _ => ITERATES end) []) as K; rewrite app_nil_r in K; apply K; try reflexivity; destruct (at_phase c); try discriminate Hm; reflexivity.
  - eexists; split; [reflexivity|]; apply (next_combined r xs c H ITERATOR_VALUE RESOLVES [VALUE UNDEFINED]); try reflexivity; destruct (at_phase c); try discriminate Hm; reflexivity.
  - apply done_combined; auto; destruct (at_phase c); congruence.
  - apply promise_combined; auto; destruct (at_phase c); congruence.
  - eexists; split; [reflexivity|]; apply (throw_combined r xs c H true); destruct (at_phase c); (reflexivity || discriminate).
  - eexists; split; [reflexivity|]; apply (throw_combined r xs c H false); destruct (at_phase c); (reflexivity || discriminate).
  - apply Nat.ltb_lt in Hm; rewrite (co_executors _ _ _ H), length_map, length_seq in Hm; destruct (first_argument i xs) as [v|] eqn:E.
    + assert (K : is_called xs i = true) by (unfold is_called; rewrite E; reflexivity); exists c; split; [|apply called_combined; assumption].
      unfold ecma_promise_all_or_all_settled_handler_cb; rewrite (co_executors _ _ _ H); change (map ?f ?l) with (f <$> l); rewrite list_lookup_fmap, lookup_seq_lt by exact Hm; cbn; rewrite K; reflexivity.
    + apply element_combined; auto; exact (settles_once_outcome r xs i args Ho E Hm).
  - eexists; split; [reflexivity|]; apply handed_combined, H.
Qed.

Lemma combine_run_ok (r : routine) (ys xs : list combine) (c : combinator) :
  combined_ok r xs c -> combine_may_run r ys c = true -> settles_once r (xs ++ ys) = true -> Z.of_nat (length (xs ++ ys)) < ECMA_INTEGER_NUMBER_MAX ->
  exists c', combine_run r ys c = Some c' /\ combined_ok r (xs ++ ys) c'.
Proof.
  revert xs c; induction ys as [|x ys IH]; intros xs c H Hm Ho Hn; [exists c; rewrite app_nil_r; auto|]; cbn [combine_run combine_may_run] in *; apply andb_prop in Hm as [Hx Hm].
  assert (Hl : Z.of_nat (elements xs) + 1 <= ECMA_INTEGER_NUMBER_MAX) by (pose proof (elements_le xs); rewrite length_app in Hn; cbn in Hn; lia).
  replace (xs ++ x :: ys) with ((xs ++ [x]) ++ ys) in * by (rewrite <- app_assoc; reflexivity).
  destruct (combine_step_ok r x xs c H Hx (settles_once_before _ _ _ Ho) Hl) as (c1 & E & H1); rewrite E in Hm |- *; exact (IH (xs ++ [x]) c1 H1 Hm Ho Hn).
Qed.


(** Two promises; the first is settled before the second is met, and again later *)
Definition demo_loop : list combine := [RETURNS; RETURNS; ITERATOR_VALUE; PROMISE_RESOLVED; ELEMENT 0 [PRIMITIVE 10]; RETURNS; ITERATOR_VALUE; PROMISE_RESOLVED; RETURNS].
(** The second is settled before the iterator ends, and the capability's resolve throws; or after that *)
Definition demo_all : list combine := demo_loop ++ [ELEMENT 1 [PRIMITIVE 20]; ITERATOR_DONE true; ELEMENT 0 [PRIMITIVE 11]].
Definition demo_any : list combine := demo_loop ++ [ITERATOR_DONE false; HANDED [PRIMITIVE 5]; ELEMENT 1 []].
Definition demo_settled : list combine := demo_loop ++ [ITERATOR_DONE false; ELEMENT 0 [PRIMITIVE 11]; ELEMENT 3 [PRIMITIVE 20]].
(** The function then of the second promise throws *)
Definition demo_throws : list combine := demo_loop ++ [ITERATOR_VALUE; PROMISE_RESOLVED; ELEMENT 1 []; THROWS; ELEMENT 2 []].


(** Promise.allSettled counts a promise twice.  Each promise gets two element functions with a mark of
    their own that they were called, where the language has one mark for both: if the function
    then of the first promise calls both, the capability is resolved while the second promise is
    pending (and a second time at the end of the loop); and with two such promises the counter
    wraps around below zero, and the next change of it finds that it is no integer value. *)
Example all_settled_counts_twice :
  let start := [RETURNS; RETURNS] in let promise := [ITERATOR_VALUE; PROMISE_RESOLVED; RETURNS] in
  let early := start ++ promise ++ [ELEMENT 0 [PRIMITIVE 1]; ELEMENT 1 [PRIMITIVE 2]] ++ promise ++ [ITERATOR_DONE false] in
  option_map calls (combine_run ECMA_PROMISE_ROUTINE_ALLSETTLED early perform_start) =
    Some [RESOLVE_WITH [STATUS true (PRIMITIVE 2)]; RESOLVE_WITH [STATUS true (PRIMITIVE 2); VALUE UNDEFINED]] /\
  let both := start ++ promise ++ promise ++ map (fun i => ELEMENT i [PRIMITIVE 1]) (seq 0 4) ++ [ITERATOR_DONE false] in
  combine_may_run ECMA_PROMISE_ROUTINE_ALLSETTLED both perform_start = true /\ combine_run ECMA_PROMISE_ROUTINE_ALLSETTLED both perform_start = None.
Proof. vm_compute; repeat split. Qed.
