(* ===== verification/Binary64.v ===== *)
(** * Binary64 arithmetic

    The operations of IEEE 754 on the 64-bit patterns of BigIntNumber, as C
    performs them on ecma_number_t: the result is the exact result, a quotient of
    integers, rounded to the nearest number, ties to even.  The helpers of
    src/jjs-core/ecma/base/ecma-helpers-number.c that the dates use are here too.
    A conversion to an integer that the number does not fit in is undefined in C
    and [None] here. *)
From Stdlib Require Import ZArith Lia Bool QArith Lqa.
From S2P Require Import Prelude BigIntNumber.
#[local] Open Scope Z_scope.

(** ** Numbers as quotients *)

(** A finite number is [number_num / number_den] *)
Definition number_sig (b : Z) : Z := if ecma_number_biased_exp b =? 0 then ecma_number_fraction b else 2 ^ 52 + ecma_number_fraction b.
Definition number_exp (b : Z) : Z := if ecma_number_biased_exp b =? 0 then -1074 else ecma_number_biased_exp b - 1075.
Definition number_num (b : Z) : Z := (if ecma_number_sign b then -1 else 1) * number_sig b * 2 ^ Z.max 0 (number_exp b).
Definition number_den (b : Z) : Z := 2 ^ Z.max 0 (- number_exp b).

Definition number_make_nan : Z := 9221120237041090560.
Definition number_make_zero (sign : bool) : Z := ecma_number_create sign 0 0.
Definition ecma_number_is_finite (b : Z) : bool := number_finite b.

(** ** Rounding *)

(** The integer nearest to n/d, ties to even *)
Definition nearest_even (n d : Z) : Z :=
  let q := n / d in
  let r := n mod d in
  if 2 * r <? d then q else if d <? 2 * r then q + 1 else if Z.even q then q else q + 1.

(** n/d in units of 2^e *)
Definition unit_num (n e : Z) : Z := n * 2 ^ Z.max 0 (- e).
Definition unit_den (d e : Z) : Z := d * 2 ^ Z.max 0 e.

(** The exponent of the last of the 53 digits of n/d *)
Definition last_digit (n d : Z) : Z :=
  let e := Z.log2 n - Z.log2 d - 52 in
  if unit_num n e <? 2 ^ 52 * unit_den d e then e - 1 else e.

Definition number_pack (sign : bool) (m e : Z) : Z :=
  let '(m, e) := if m =? 2 ^ 53 then (2 ^ 52, e + 1) else (m, e) in
  if 971 <? e then ecma_number_make_infinity sign
  else if m <? 2 ^ 52 then ecma_number_create sign 0 m
  else ecma_number_create sign (e + 1075) (m - 2 ^ 52).

(** The number nearest to the quotient [n / d] of the sign [sign] *)
Definition round_quotient (sign : bool) (n d : Z) : Z :=
  if n =? 0 then number_make_zero sign
  else
    let e := Z.max (last_digit n d) (-1074) in
    number_pack sign (nearest_even (unit_num n e) (unit_den d e)) e.

(** Rounds a signed quotient; [sign] is the sign of a zero *)
Definition number_round (sign : bool) (n d : Z) : Z :=
  round_quotient (if n =? 0 then sign else n <? 0) (Z.abs n) d.

(** (ecma_number_t) z *)
Definition number_of_int (z : Z) : Z := number_round false z 1.

(** ** Operators *)

(** - a and fabs: the sign bit *)
Definition number_opp (a : Z) : Z := ecma_number_create (negb (ecma_number_sign a)) (ecma_number_biased_exp a) (ecma_number_fraction a).
Definition number_fabs (a : Z) : Z := ecma_number_create false (ecma_number_biased_exp a) (ecma_number_fraction a).

Definition number_plus (a b : Z) : Z :=
  if ecma_number_is_nan a || ecma_number_is_nan b then number_make_nan
  else if ecma_number_is_infinity a then
    if ecma_number_is_infinity b && negb (Bool.eqb (ecma_number_sign a) (ecma_number_sign b)) then number_make_nan else a
  else if ecma_number_is_infinity b then b
  else number_round (ecma_number_sign a && ecma_number_sign b) (number_num a * number_den b + number_num b * number_den a) (number_den a * number_den b).

Definition number_minus (a b : Z) : Z := number_plus a (number_opp b).

Definition number_times (a b : Z) : Z :=
  let sign := xorb (ecma_number_sign a) (ecma_number_sign b) in
  if ecma_number_is_nan a || ecma_number_is_nan b then number_make_nan
  else if ecma_number_is_infinity a || ecma_number_is_infinity b then
    if ecma_number_is_zero a || ecma_number_is_zero b then number_make_nan else ecma_number_make_infinity sign
  else number_round sign (number_num a * number_num b) (number_den a * number_den b).

Definition number_divide (a b : Z) : Z :=
  let sign := xorb (ecma_number_sign a) (ecma_number_sign b) in
  if ecma_number_is_nan a || ecma_number_is_nan b then number_make_nan
  else if ecma_number_is_infinity a then if ecma_number_is_infinity b then number_make_nan else ecma_number_make_infinity sign
  else if ecma_number_is_infinity b then number_make_zero sign
  else if ecma_number_is_zero b then if ecma_number_is_zero a then number_make_nan else ecma_number_make_infinity sign
  else number_round sign (Z.sgn (number_num b) * (number_num a * number_den b)) (Z.abs (number_num b) * number_den a).

(** fmod: the remainder has the sign of the dividend *)
Definition number_fmod (a b : Z) : Z :=
  if ecma_number_is_nan a || ecma_number_is_nan b || ecma_number_is_infinity a || ecma_number_is_zero b then number_make_nan
  else if ecma_number_is_infinity b then a
  else number_round (ecma_number_sign a) (Z.rem (number_num a * number_den b) (number_num b * number_den a)) (number_den a * number_den b).

Definition number_floor (a : Z) : Z :=
  if negb (ecma_number_is_finite a) then a else number_round (ecma_number_sign a) (number_num a / number_den a) 1.

(** a < b, a <= b and a == b; a NaN compares false *)
Definition number_key (a : Z) : Z :=
  if ecma_number_is_infinity a then if ecma_number_sign a then - 2 ^ 1024 else 2 ^ 1024 else number_num a.
Definition number_compare (a b : Z) : comparison :=
  (number_key a * (if ecma_number_is_infinity b then 1 else number_den b) ?= number_key b * (if ecma_number_is_infinity a then 1 else number_den a)).
Definition number_lt (a b : Z) : bool :=
  negb (ecma_number_is_nan a) && negb (ecma_number_is_nan b) && match number_compare a b with Lt => true | _ => false end.
Definition number_le (a b : Z) : bool :=
  negb (ecma_number_is_nan a) && negb (ecma_number_is_nan b) && match number_compare a b with Gt => false | _ => true end.
Definition number_eq (a b : Z) : bool :=
  negb (ecma_number_is_nan a) && negb (ecma_number_is_nan b) && match number_compare a b with Eq => true | _ => false end.

(** ** Conversions to integers, and ecma_number_trunc *)

(** A result of int32_t arithmetic; beyond the range it is undefined *)
Definition int32 (z : Z) : option Z := if (-2147483648 <=? z) && (z <=? 2147483647) then Some z else None.

(** (int32_t) b *)
Definition number_to_int32 (b : Z) : option Z :=
  if ecma_number_is_finite b then int32 (Z.quot (number_num b) (number_den b)) else None.

Definition ecma_number_trunc (num : Z) : Z :=
  let binary := num in
  let exponent := ecma_number_biased_exp binary in
  if exponent <? exponent_bias then number_make_zero false
  else
    let unbiased_exp := u32 (exponent - exponent_bias) in
    if ECMA_NUMBER_FRACTION_WIDTH <=? unbiased_exp then num
    else Z.land binary (B64 - 1 - (Z.shiftl 1 (ECMA_NUMBER_FRACTION_WIDTH - unbiased_exp) - 1)).

(** ** Lemmas: scaling *)

Lemma unit_num_scale c n e : unit_num (c * n) e = c * unit_num n e.
Proof. unfold unit_num. ring. Qed.
Lemma unit_den_scale c d e : unit_den (c * d) e = c * unit_den d e.
Proof. unfold unit_den. ring. Qed.

Lemma nearest_even_scale c n d : 0 < c -> 0 < d -> nearest_even (c * n) (c * d) = nearest_even n d.
Proof.
  intros Hc Hd. unfold nearest_even. rewrite Z.div_mul_cancel_l, Z.mul_mod_distr_l by lia.
  replace (2 * (c * (n mod d))) with (c * (2 * (n mod d))) by ring.
  assert (Hl : forall x y, (c * x <? c * y) = (x <? y)) by (intros x y; destruct (Z.ltb_spec x y), (Z.ltb_spec (c * x) (c * y)); nia). now rewrite !Hl.
Qed.

Lemma unit_den_pos d e : 0 < d -> 0 < unit_den d e.
Proof. intros Hd. unfold unit_den. pose proof (Z.pow_pos_nonneg 2 (Z.max 0 e) ltac:(lia) ltac:(lia)). nia. Qed.

Lemma unit_cross n d e e' : e <= e' -> unit_num n e * unit_den d e' = unit_num n e' * unit_den d e * 2 ^ (e' - e).
Proof.
  intros He. unfold unit_num, unit_den.
  replace (n * 2 ^ Z.max 0 (- e) * (d * 2 ^ Z.max 0 e')) with (n * d * 2 ^ (Z.max 0 (- e) + Z.max 0 e')) by (rewrite Z.pow_add_r by lia; ring).
  replace (n * 2 ^ Z.max 0 (- e') * (d * 2 ^ Z.max 0 e) * 2 ^ (e' - e)) with (n * d * 2 ^ (Z.max 0 (- e') + Z.max 0 e + (e' - e))) by (rewrite !Z.pow_add_r by lia; ring).
  do 2 f_equal. lia.
Qed.

(** [e] is the exponent of the last of the 53 digits of n/d *)
Definition normal (n d e : Z) : Prop := 2 ^ 52 * unit_den d e <= unit_num n e < 2 ^ 53 * unit_den d e.

Lemma last_digit_normal n d : 0 < n -> 0 < d -> normal n d (last_digit n d).
Proof.
  intros Hn Hd. unfold last_digit. set (e := Z.log2 n - Z.log2 d - 52).
  pose proof (Z.log2_nonneg n) as Hln. pose proof (Z.log2_nonneg d) as Hld. pose proof (Z.log2_spec n Hn) as [Hn1 Hn2]. pose proof (Z.log2_spec d Hd) as [Hd1 Hd2].
  assert (H : 2 ^ 51 * unit_den d e < unit_num n e < 2 ^ 53 * unit_den d e).
  { unfold unit_num, unit_den. rewrite Z.pow_succ_r in Hn2, Hd2 by lia. set (L := 2 ^ Z.log2 d) in *. destruct (Z_le_gt_dec 0 e) as [He | He].
    - rewrite (Z.max_r 0 e), (Z.max_l 0 (- e)) by lia. replace (Z.log2 n) with (Z.log2 d + 52 + e) in Hn1, Hn2 by lia.
      rewrite !Z.pow_add_r in Hn1, Hn2 by lia. fold L in Hn1, Hn2. set (P := 2 ^ e) in *. assert (HP : 0 < P) by (apply Z.pow_pos_nonneg; lia).
      assert (d * P < 2 * L * P) by (apply Z.mul_lt_mono_pos_r; lia). assert (L * P <= d * P) by (apply Z.mul_le_mono_nonneg_r; lia). assert (E : L * 2 ^ 52 * P = 2 ^ 52 * (L * P)) by ring. rewrite E in Hn1, Hn2.
      change (2 ^ 52) with 4503599627370496 in *. change (2 ^ 51) with 2251799813685248. change (2 ^ 53) with 9007199254740992. lia.
    - rewrite (Z.max_l 0 e), (Z.max_r 0 (- e)) by lia. rewrite Z.pow_0_r, Z.mul_1_r. set (P := 2 ^ (- e)) in *. assert (HP : 0 < P) by (apply Z.pow_pos_nonneg; lia).
      assert (E : 2 ^ Z.log2 n * P = L * 2 ^ 52) by (unfold L, P; rewrite <- !Z.pow_add_r by lia; f_equal; lia). set (N := 2 ^ Z.log2 n) in *.
      assert (N * P <= n * P) by (apply Z.mul_le_mono_nonneg_r; lia). assert (n * P < 2 * N * P) by (apply Z.mul_lt_mono_pos_r; lia).
      change (2 ^ 52) with 4503599627370496 in *. change (2 ^ 51) with 2251799813685248. change (2 ^ 53) with 9007199254740992. lia. }
  destruct (Z.ltb_spec (unit_num n e) (2 ^ 52 * unit_den d e)) as [Hlt | Hge]; [| unfold normal; lia].
  pose proof (unit_cross n d (e - 1) e ltac:(lia)) as Hc. replace (e - (e - 1)) with 1 in Hc by lia. change (2 ^ 1) with 2 in Hc.
  pose proof (unit_den_pos d e Hd). pose proof (unit_den_pos d (e - 1) Hd). unfold normal. change (2 ^ 53) with (2 * 2 ^ 52) in *. change (2 ^ 52) with (2 * 2 ^ 51) in *. nia.
Qed.

Lemma normal_unique n d e e' : 0 < d -> normal n d e -> normal n d e' -> e = e'.
Proof.
  intros Hd. assert (H : forall e e', normal n d e -> normal n d e' -> ~ e < e').
  { clear e e'. intros e e' [H1 H2] [H1' H2'] Hlt. pose proof (unit_cross n d e e' ltac:(lia)) as Hc. pose proof (unit_den_pos d e Hd). pose proof (unit_den_pos d e' Hd).
    assert (H2e : 2 <= 2 ^ (e' - e)) by (change 2 with (2 ^ 1) at 1; apply Z.pow_le_mono_r; lia). change (2 ^ 53) with (2 * 2 ^ 52) in *.
    set (U := unit_num n e) in *. set (V := unit_den d e) in *. set (U' := unit_num n e') in *. set (V' := unit_den d e') in *. set (P := 2 ^ (e' - e)) in *.
    assert (U * V' < 2 * 2 ^ 52 * V * V') by (apply Z.mul_lt_mono_pos_r; lia). assert (2 ^ 52 * V' * V * 2 <= U' * V * P) by (apply Z.mul_le_mono_nonneg; nia). lia. }
  intros N N'. pose proof (H e e' N N'). pose proof (H e' e N' N). lia.
Qed.

Lemma last_digit_eq n d e : 0 < n -> 0 < d -> normal n d e -> last_digit n d = e.
Proof. intros Hn Hd N. apply (normal_unique n d _ e Hd); [now apply last_digit_normal | exact N]. Qed.

Lemma last_digit_scale c n d : 0 < c -> 0 < n -> 0 < d -> last_digit (c * n) (c * d) = last_digit n d.
Proof.
  intros Hc Hn Hd. apply last_digit_eq; [nia.. |]. pose proof (last_digit_normal n d Hn Hd). unfold normal in *. rewrite unit_num_scale, unit_den_scale. nia.
Qed.

Lemma last_digit_bounds n d : 0 < n -> 0 < d -> Z.log2 n - Z.log2 d - 53 <= last_digit n d <= Z.log2 n - Z.log2 d - 52.
Proof. intros Hn Hd. unfold last_digit. destruct (_ <? _); lia. Qed.

Lemma round_quotient_scale s c n d : 0 < c -> 0 <= n -> 0 < d -> round_quotient s (c * n) (c * d) = round_quotient s n d.
Proof.
  intros Hc Hn Hd. unfold round_quotient. destruct (Z.eqb_spec (c * n) 0) as [E | E], (Z.eqb_spec n 0) as [E' | E']; [reflexivity | nia | nia |].
  rewrite last_digit_scale, unit_num_scale, unit_den_scale, nearest_even_scale by (try apply unit_den_pos; lia). reflexivity.
Qed.

(** Rounding depends on the quotient only *)
Lemma number_round_ratio s n d n' d' : 0 < d -> 0 < d' -> n * d' = n' * d -> number_round s n d = number_round s n' d'.
Proof.
  intros Hd Hd' E. unfold number_round.
  rewrite <- (round_quotient_scale _ d' (Z.abs n) d), <- (round_quotient_scale _ d (Z.abs n') d') by lia.
  replace (d' * Z.abs n) with (d * Z.abs n') by nia. rewrite (Z.mul_comm d d'). f_equal.
  destruct (Z.eqb_spec n 0), (Z.eqb_spec n' 0), (Z.ltb_spec n 0), (Z.ltb_spec n' 0); try reflexivity; nia.
Qed.

(** ** The fields of a rounded number *)

Lemma pack_fields s m e : 2 ^ 52 <= m <= 2 ^ 53 -> -1074 <= e <= 970 ->
  let b := number_pack s m e in
  is_u64 b /\ ecma_number_sign b = s /\ number_finite b = true /\ number_num b * 2 ^ Z.max 0 (- e) = (if s then -1 else 1) * m * 2 ^ Z.max 0 e * number_den b /\
  -1074 <= number_exp b /\ e <= number_exp b <= e + 1.
Proof.
  intros Hm He. unfold number_pack.
  assert (H : forall m e, 2 ^ 52 <= m < 2 ^ 53 -> -1074 <= e <= 971 -> let b := ecma_number_create s (e + 1075) (m - 2 ^ 52) in
    is_u64 b /\ ecma_number_sign b = s /\ number_finite b = true /\ number_sig b = m /\ number_exp b = e).
  { clear m e Hm He. intros m e Hm He b. destruct (number_create_fields s (e + 1075) (m - 2 ^ 52) ltac:(lia) ltac:(lia)) as (H1 & H2 & H3 & H4). fold b in H1, H2, H3, H4.
    unfold number_finite, number_sig, number_exp. rewrite H3, H4. splits; try assumption; [apply Z.ltb_lt; lia | |]; destruct (Z.eqb_spec (e + 1075) 0); lia. }
  assert (Hn : forall b m' e', ecma_number_sign b = s -> number_sig b = m' -> number_exp b = e' -> m' * 2 ^ Z.max 0 e' * 2 ^ Z.max 0 (- e) = m * 2 ^ Z.max 0 e * 2 ^ Z.max 0 (- e') ->
    number_num b * 2 ^ Z.max 0 (- e) = (if s then -1 else 1) * m * 2 ^ Z.max 0 e * number_den b).
  { intros b m' e' Hs Hm' He' E. unfold number_num, number_den. rewrite Hs, Hm', He'. rewrite <- !Z.mul_assoc. rewrite <- !Z.mul_assoc in E. now rewrite E. }
  destruct (Z.eqb_spec m (2 ^ 53)) as [-> | Hne].
  - rewrite (proj2 (Z.ltb_ge 971 (e + 1))) by lia. rewrite (proj2 (Z.ltb_ge (2 ^ 52) (2 ^ 52))) by lia.
    destruct (H (2 ^ 52) (e + 1) ltac:(lia) ltac:(lia)) as (H1 & H2 & H3 & H4 & H5). splits; try assumption; try lia.
    apply (Hn _ _ _ H2 H4 H5). rewrite <- !Z.pow_add_r by lia. f_equal. lia.
  - rewrite (proj2 (Z.ltb_ge 971 e)) by lia. rewrite (proj2 (Z.ltb_ge m (2 ^ 52))) by lia.
    destruct (H m e ltac:(lia) ltac:(lia)) as (H1 & H2 & H3 & H4 & H5). splits; try assumption; try lia.
    apply (Hn _ _ _ H2 H4 H5). ring.
Qed.

Lemma nearest_even_spec n d : 0 < d -> - d <= 2 * (nearest_even n d * d - n) <= d.
Proof.
  intros Hd. unfold nearest_even. pose proof (Z.div_mod n d ltac:(lia)) as E. pose proof (Z.mod_pos_bound n d Hd).
  set (q := n / d) in *. set (r := n mod d) in *. destruct (Z.ltb_spec (2 * r) d), (Z.ltb_spec d (2 * r)), (Z.even q); nia.
Qed.

Lemma nearest_even_exact k d : 0 < d -> nearest_even (k * d) d = k.
Proof.
  intros Hd. unfold nearest_even. rewrite Z.div_mul, Z.mod_mul by lia. cbv zeta. now rewrite (proj2 (Z.ltb_lt (2 * 0) d)) by lia.
Qed.

Lemma number_den_pos b : 0 < number_den b.
Proof. apply Z.pow_pos_nonneg; lia. Qed.

(** The error of a rounding is at most a part in 2^53 *)
Lemma round_quotient_error s n d : 0 < n -> 0 < d -> -1074 <= last_digit n d <= 970 ->
  let b := round_quotient s n d in
  is_u64 b /\ ecma_number_sign b = s /\ number_finite b = true /\ 0 < Z.abs (number_num b) /\ number_num b = (if s then -1 else 1) * Z.abs (number_num b) /\
  Z.abs (Z.abs (number_num b) * d - n * number_den b) * 2 ^ 53 <= n * number_den b /\ last_digit n d <= number_exp b <= last_digit n d + 1.
Proof.
  intros Hn Hd He. unfold round_quotient. rewrite (proj2 (Z.eqb_neq n 0)) by lia. rewrite Z.max_l by lia. set (e := last_digit n d) in *.
  destruct (last_digit_normal n d Hn Hd) as [N1 N2]. fold e in N1, N2. pose proof (unit_den_pos d e Hd) as HV.
  pose proof (nearest_even_spec (unit_num n e) (unit_den d e) HV) as Hm. set (m := nearest_even (unit_num n e) (unit_den d e)) in *.
  assert (Hm52 : 2 ^ 52 <= m <= 2 ^ 53).
  { clearbody m. set (V := unit_den d e) in *. set (U := unit_num n e) in *. clearbody U V.
    change (2 ^ 54) with (2 * 9007199254740992). change (2 ^ 53) with 9007199254740992 in *. change (2 ^ 52) with 4503599627370496 in *. assert (9007199254740992 - 1 <= 2 * m) by (apply (Z.mul_le_mono_pos_r _ _ V HV); lia).
    assert (2 * m < 2 * 9007199254740992 + 1) by (apply (Z.mul_lt_mono_pos_r V _ _ HV); lia). lia. }
  destruct (pack_fields s m e Hm52 ltac:(lia)) as (H1 & H2 & H3 & H4 & H5 & H6). set (b := number_pack s m e) in *. pose proof (number_den_pos b) as HD.
  assert (P1 : 0 < 2 ^ Z.max 0 (- e)) by (apply Z.pow_pos_nonneg; lia). assert (P2 : 0 < 2 ^ Z.max 0 e) by (apply Z.pow_pos_nonneg; lia).
  unfold unit_num, unit_den in *. set (A := 2 ^ Z.max 0 (- e)) in *. set (B := 2 ^ Z.max 0 e) in *. set (D := number_den b) in *.
  assert (Hpos : 0 < m * B * D) by nia.
  assert (Habs : Z.abs (number_num b) * A = m * B * D) by (destruct s; nia).
  assert (Hsign : 0 < Z.abs (number_num b)) by nia.
  split; [exact H1 |]. split; [exact H2 |]. split; [exact H3 |]. split; [exact Hsign |]. split; [destruct s; nia |]. split; [| exact H6].
  assert (E : (Z.abs (number_num b) * d - n * D) * A = (m * (d * B) - n * A) * D) by (transitivity (Z.abs (number_num b) * A * d - n * D * A); [ring | rewrite Habs; ring]).
  set (X := Z.abs (number_num b) * d - n * D) in *. set (Y := m * (d * B) - n * A) in *.
  assert (EA : Z.abs X * A = Z.abs Y * D) by (rewrite <- (Z.abs_eq A), <- (Z.abs_eq D), <- !Z.abs_mul by lia; now rewrite E).
  assert (HY : Z.abs Y * 2 ^ 53 <= n * A) by (change (2 ^ 53) with 9007199254740992; change (2 ^ 52) with 4503599627370496 in *; lia).
  apply (Z.mul_le_mono_pos_r _ _ A P1). replace (Z.abs X * 2 ^ 53 * A) with (Z.abs Y * 2 ^ 53 * D) by (transitivity (Z.abs X * A * 2 ^ 53); [rewrite EA |]; ring).
  replace (n * D * A) with (n * A * D) by ring. apply Z.mul_le_mono_nonneg_r; lia.
Qed.

(** ** Integers as numbers

    All integers up to 2^53 are numbers, and the operators on them are exact. *)

Definition exact_integer (k : Z) : Prop := - 9007199254740992 <= k <= 9007199254740992.

(** [b] is the number [k]; a zero is positive *)
Record is_number (b k : Z) : Prop := {
  in_u64 : is_u64 b;
  in_sign : ecma_number_sign b = (k <? 0);
  in_finite : number_finite b = true;
  in_value : number_num b = k * number_den b
}.

Lemma number_round_of s k d : 0 < d -> (k = 0 -> s = false) -> number_round s (k * d) d = number_of_int k.
Proof.
  intros Hd Hs. unfold number_of_int. destruct (Z.eq_dec k 0) as [-> | Hk]; [rewrite (Hs eq_refl) |].
  - apply number_round_ratio; lia.
  - unfold number_round. rewrite (proj2 (Z.eqb_neq (k * d) 0)), (proj2 (Z.eqb_neq k 0)) by nia.
    replace (k * d <? 0) with (k <? 0) by (destruct (Z.ltb_spec k 0), (Z.ltb_spec (k * d) 0); nia).
    rewrite <- (round_quotient_scale _ d (Z.abs k) 1) by lia. f_equal; [nia | lia].
Qed.

Lemma number_of_spec k : exact_integer k -> is_number (number_of_int k) k.
Proof.
  unfold exact_integer. intros Hk. unfold number_of_int, number_round. destruct (Z.eqb_spec k 0) as [-> | Hne].
  - split; [split; vm_compute; congruence | reflexivity..].
  - set (n := Z.abs k). set (e := Z.log2 n - 52). assert (Hn : 0 < n <= 2 ^ 53) by lia.
    destruct (Z.log2_spec n ltac:(lia)) as [L1 L2]. pose proof (Z.log2_nonneg n). rewrite Z.pow_succ_r in L2 by lia.
    assert (He : -52 <= e <= 1) by (unfold e; assert (Z.log2 n <= Z.log2 (2 ^ 53)) by (apply Z.log2_le_mono; lia); rewrite Z.log2_pow2 in * by lia; lia).
    assert (N : exists m, unit_num n e = m * unit_den 1 e /\ 2 ^ 52 <= m < 2 ^ 53 /\ m * 2 ^ Z.max 0 e = n * 2 ^ Z.max 0 (- e)).
    { unfold unit_num, unit_den. destruct (Z_le_gt_dec e 0) as [H0 | H0].
      - rewrite (Z.max_l 0 e), (Z.max_r 0 (- e)) by lia. exists (n * 2 ^ (- e)). assert (E : 2 ^ Z.log2 n * 2 ^ (- e) = 2 ^ 52) by (rewrite <- Z.pow_add_r by lia; f_equal; unfold e; lia).
        pose proof (Z.pow_pos_nonneg 2 (- e) ltac:(lia) ltac:(lia)). splits; [lia | nia | | lia]. change (2 ^ 53) with (2 * 2 ^ 52). nia.
      - assert (e = 1) by lia. assert (Z.log2 n = 53) by (unfold e in *; lia). assert (n = 2 ^ 53) by (replace (Z.log2 n) with 53 in L1; lia).
        exists (2 ^ 52). replace e with 1 by lia. replace n with (2 ^ 53) by lia. splits; try reflexivity; lia. }
    destruct N as (m & N1 & N2 & N3). pose proof (unit_den_pos 1 e ltac:(lia)) as HV.
    assert (El : last_digit n 1 = e) by (apply last_digit_eq; [lia | lia |]; unfold normal; rewrite N1; nia).
    unfold round_quotient. rewrite (proj2 (Z.eqb_neq n 0)) by lia. rewrite El, Z.max_l by lia. rewrite N1, nearest_even_exact by exact HV.
    destruct (pack_fields (k <? 0) m e ltac:(lia) ltac:(lia)) as (H1 & H2 & H3 & H4 & _). split; try assumption.
    pose proof (number_den_pos (number_pack (k <? 0) m e)). set (b := number_pack (k <? 0) m e) in *.
    assert (P : 0 < 2 ^ Z.max 0 (- e)) by (apply Z.pow_pos_nonneg; lia).
    apply (Z.mul_cancel_r _ _ (2 ^ Z.max 0 (- e))); [lia |]. rewrite H4.
    rewrite <- (Z.mul_assoc _ m), N3. unfold n. destruct (Z.ltb_spec k 0); [rewrite Z.abs_neq | rewrite Z.abs_eq]; lia || ring.
Qed.

Lemma is_number_finite b k : is_number b k -> ecma_number_is_nan b = false /\ ecma_number_is_infinity b = false.
Proof.
  intros [Hb _ Hf _]. destruct (number_tests b Hb) as [Ht _]. rewrite Hf in Ht. cbn [negb] in Ht. now apply orb_false_iff in Ht.
Qed.

Lemma number_num_zero b : is_u64 b -> ecma_number_is_zero b = (number_num b =? 0).
Proof.
  intros Hb. destruct (number_tests b Hb) as [_ ->]. unfold number_magnitude, number_num, number_sig, number_exp.
  destruct (number_fields b Hb) as (_ & _ & He & Hf & _). destruct (Z.eqb_spec (ecma_number_biased_exp b) 0) as [E | E].
  - change (2 ^ Z.max 0 (-1074)) with 1. destruct (ecma_number_sign b), (Z.eqb_spec (ecma_number_fraction b) 0); symmetry; [apply Z.eqb_eq | apply Z.eqb_neq | apply Z.eqb_eq | apply Z.eqb_neq]; lia.
  - pose proof (Z.pow_pos_nonneg 2 (ecma_number_biased_exp b - 1) ltac:(lia) ltac:(lia)). pose proof (Z.pow_pos_nonneg 2 (Z.max 0 (ecma_number_biased_exp b - 1075)) ltac:(lia) ltac:(lia)).
    rewrite (proj2 (Z.eqb_neq _ 0)) by nia. symmetry. apply Z.eqb_neq. destruct (ecma_number_sign b); nia.
Qed.

Lemma is_number_zero b k : is_number b k -> ecma_number_is_zero b = (k =? 0).
Proof.
  intros [Hb _ _ Hv]. rewrite (number_num_zero b Hb), Hv. pose proof (number_den_pos b). destruct (Z.eqb_spec k 0), (Z.eqb_spec (k * number_den b) 0); nia.
Qed.

(** ** The operators on integers *)

Lemma number_opp_fields b : is_u64 b -> number_finite b = true ->
  is_u64 (number_opp b) /\ ecma_number_sign (number_opp b) = negb (ecma_number_sign b) /\ number_finite (number_opp b) = true /\
  number_num (number_opp b) = - number_num b /\ number_den (number_opp b) = number_den b.
Proof.
  intros Hb Hf. destruct (number_fields b Hb) as (_ & _ & He & Hfr & _).
  destruct (number_create_fields (negb (ecma_number_sign b)) (ecma_number_biased_exp b) (ecma_number_fraction b) He Hfr) as (H1 & H2 & H3 & H4).
  unfold number_finite, number_num, number_den, number_sig, number_exp, number_opp in *. rewrite H2, H3, H4. splits; try assumption; try reflexivity.
  destruct (ecma_number_sign b); cbn [negb]; ring.
Qed.

Lemma number_fabs_of b k : is_number b k -> is_number (number_fabs b) (Z.abs k).
Proof.
  intros [Hb Hs Hf Hv]. destruct (number_fields b Hb) as (_ & _ & He & Hfr & _).
  destruct (number_create_fields false (ecma_number_biased_exp b) (ecma_number_fraction b) He Hfr) as (H1 & H2 & H3 & H4).
  unfold number_fabs. split.
  - exact H1.
  - rewrite H2. symmetry. apply Z.ltb_ge. lia.
  - unfold number_finite in *. now rewrite H3.
  - unfold number_num, number_den, number_sig, number_exp in *. rewrite H2, H3, H4. rewrite Hs in Hv.
    destruct (Z.ltb_spec k 0); [rewrite Z.abs_neq by lia | rewrite Z.abs_eq by lia]; lia.
Qed.

Section Operators.
Context (x y a b : Z) (Hx : is_number x a) (Hy : is_number y b).

Lemma number_plus_of : exact_integer (a + b) -> number_plus x y = number_of_int (a + b).
Proof using Hx Hy.
  intros _. unfold number_plus. destruct (is_number_finite x a Hx) as [-> ->], (is_number_finite y b Hy) as [-> ->]. cbn [orb andb].
  rewrite (in_value _ _ Hx), (in_value _ _ Hy), (in_sign _ _ Hx), (in_sign _ _ Hy). pose proof (number_den_pos x). pose proof (number_den_pos y).
  replace (a * number_den x * number_den y + b * number_den y * number_den x) with ((a + b) * (number_den x * number_den y)) by ring.
  apply number_round_of; [nia |]. intros H1. destruct (Z.ltb_spec a 0), (Z.ltb_spec b 0); try reflexivity; lia.
Qed.

Lemma number_minus_of : exact_integer (a - b) -> number_minus x y = number_of_int (a - b).
Proof using Hx Hy.
  intros _. unfold number_minus, number_plus. destruct Hy as [Hb Hs Hf Hv]. destruct (number_opp_fields y Hb Hf) as (O1 & O2 & O3 & O4 & O5).
  destruct (number_tests _ O1) as [T _]. rewrite O3 in T. cbn [negb] in T. apply orb_false_iff in T as [-> ->].
  destruct (is_number_finite x a Hx) as [-> ->]. cbn [orb andb]. rewrite O2, O4, O5, Hs, Hv, (in_value _ _ Hx), (in_sign _ _ Hx).
  pose proof (number_den_pos x). pose proof (number_den_pos y).
  replace (a * number_den x * number_den y + - (b * number_den y) * number_den x) with ((a - b) * (number_den x * number_den y)) by ring.
  apply number_round_of; [nia |]. intros H6. destruct (Z.ltb_spec a 0), (Z.ltb_spec b 0); try reflexivity; lia.
Qed.

Lemma number_times_of : a * b <> 0 \/ (0 <= a /\ 0 <= b) -> number_times x y = number_of_int (a * b).
Proof using Hx Hy.
  intros Hz. unfold number_times. destruct (is_number_finite x a Hx) as [-> ->], (is_number_finite y b Hy) as [-> ->]. cbn [orb].
  rewrite (in_value _ _ Hx), (in_value _ _ Hy), (in_sign _ _ Hx), (in_sign _ _ Hy). pose proof (number_den_pos x). pose proof (number_den_pos y).
  replace (a * number_den x * (b * number_den y)) with (a * b * (number_den x * number_den y)) by ring.
  apply number_round_of; [nia |]. intros Hr. destruct (Z.ltb_spec a 0), (Z.ltb_spec b 0); try reflexivity; lia.
Qed.

Lemma number_compare_of : number_compare x y = (a ?= b).
Proof using Hx Hy.
  unfold number_compare, number_key. destruct (is_number_finite x a Hx) as [_ ->], (is_number_finite y b Hy) as [_ ->].
  rewrite (in_value _ _ Hx), (in_value _ _ Hy). pose proof (number_den_pos x). pose proof (number_den_pos y).
  replace (b * number_den y * number_den x) with (b * (number_den x * number_den y)) by ring. rewrite <- Z.mul_assoc. symmetry. apply Zmult_compare_compat_r. nia.
Qed.

Lemma number_lt_of : number_lt x y = (a <? b).
Proof using Hx Hy. unfold number_lt. rewrite number_compare_of. destruct (is_number_finite x a Hx) as [-> _], (is_number_finite y b Hy) as [-> _]. reflexivity. Qed.
Lemma number_le_of : number_le x y = (a <=? b).
Proof using Hx Hy. unfold number_le. rewrite number_compare_of. destruct (is_number_finite x a Hx) as [-> _], (is_number_finite y b Hy) as [-> _]. reflexivity. Qed.
Lemma number_eq_of : number_eq x y = (a =? b).
Proof using Hx Hy.
  unfold number_eq. rewrite number_compare_of. destruct (is_number_finite x a Hx) as [-> _], (is_number_finite y b Hy) as [-> _]. cbn [negb andb].
  destruct (Z.compare_spec a b), (Z.eqb_spec a b); try reflexivity; lia.
Qed.

Lemma number_fmod_of : b <> 0 -> a mod b <> 0 \/ 0 <= a -> number_fmod x y = number_of_int (Z.rem a b).
Proof using Hx Hy.
  intros Hb0 Hm. unfold number_fmod. destruct (is_number_finite x a Hx) as [-> ->], (is_number_finite y b Hy) as [-> ->].
  rewrite (is_number_zero y b Hy), (proj2 (Z.eqb_neq b 0)) by exact Hb0. cbn [orb].
  rewrite (in_value _ _ Hx), (in_value _ _ Hy), (in_sign _ _ Hx). pose proof (number_den_pos x). pose proof (number_den_pos y).
  replace (a * number_den x * number_den y) with (a * (number_den x * number_den y)) by ring. replace (b * number_den y * number_den x) with (b * (number_den x * number_den y)) by ring.
  rewrite Z.mul_rem_distr_r by nia. apply number_round_of; [nia |]. intros Hr. apply Z.ltb_ge. destruct Hm as [Hm | Hm]; [| exact Hm].
  exfalso. apply Hm. rewrite Z.rem_mod in Hr by lia. apply Z.mod_divide; [lia |]. apply Z.rem_divide; [lia |]. rewrite Z.rem_mod by lia. exact Hr.
Qed.
End Operators.

Lemma number_floor_of x a : is_number x a -> number_floor x = number_of_int a.
Proof.
  intros Hx. unfold number_floor, ecma_number_is_finite. rewrite (in_finite _ _ Hx), (in_value _ _ Hx), (in_sign _ _ Hx). cbn [negb].
  rewrite Z.div_mul by (pose proof (number_den_pos x); lia). rewrite <- (Z.mul_1_r a) at 2. apply number_round_of; [lia |]. intros ->. reflexivity.
Qed.

Lemma number_to_int32_of x a : is_number x a -> number_to_int32 x = int32 a.
Proof.
  intros Hx. unfold number_to_int32, ecma_number_is_finite. rewrite (in_finite _ _ Hx), (in_value _ _ Hx). rewrite Z.quot_mul by (pose proof (number_den_pos x); lia). reflexivity.
Qed.

(** ** Truncation *)

Lemma number_create_value (s : bool) e f : 0 <= e < 2048 -> 0 <= f < 2 ^ 52 -> ecma_number_create s e f = (Z.b2z s * 2048 + e) * 2 ^ 52 + f.
Proof.
  intros He Hf. unfold ecma_number_create, ECMA_NUMBER_FRACTION_WIDTH. rewrite Z.shiftl_mul_pow2 by lia. unfold u64.
  rewrite (Z.mod_small (e * _)) by lia. rewrite lor_mul_low by lia.
  destruct s; cbn [Z.b2z]; [| lia]. rewrite Z.lor_comm. change ECMA_NUMBER_SIGN_BIT with (1 * 2 ^ 63). rewrite lor_mul_low by lia. lia.
Qed.

Lemma number_recreate b : is_u64 b -> b = ecma_number_create (ecma_number_sign b) (ecma_number_biased_exp b) (ecma_number_fraction b).
Proof.
  intros Hb. destruct (number_fields b Hb) as (E1 & E2 & He & Hf & _). rewrite number_create_value by assumption. rewrite E1, E2 in *.
  assert (Es : Z.b2z (ecma_number_sign b) = b / 2 ^ 63).
  { unfold ecma_number_sign. change ECMA_NUMBER_SIGN_BIT with (2 ^ 63). rewrite land_pow2, negb_involutive by lia. rewrite Z.testbit_spec' by lia.
    apply Z.mod_small. unfold is_u64 in Hb. change (2 ^ 63) with 9223372036854775808. Z.div_mod_to_equations. lia. }
  rewrite Es. change (2 ^ 63) with 9223372036854775808 in *. change (2 ^ 52) with 4503599627370496 in *. Z.div_mod_to_equations. lia.
Qed.

Lemma land_clear_low b j : is_u64 b -> 0 <= j <= 64 -> Z.land b (B64 - 1 - (Z.shiftl 1 j - 1)) = b - b mod 2 ^ j.
Proof.
  intros Hb Hj. assert (Em : B64 - 1 - (Z.shiftl 1 j - 1) = Z.shiftl (Z.ones (64 - j)) j).
  { rewrite !Z.shiftl_mul_pow2, Z.ones_equiv by lia. assert (E : 2 ^ (64 - j) * 2 ^ j = B64) by (rewrite <- Z.pow_add_r by lia; now replace (64 - j + j) with 64 by lia). lia. }
  rewrite Em. assert (El : Z.land b (Z.shiftl (Z.ones (64 - j)) j) = Z.shiftl (Z.land (Z.shiftr b j) (Z.ones (64 - j))) j).
  { apply Z.bits_inj'. intros i Hi. rewrite Z.land_spec, !Z.shiftl_spec, Z.land_spec by lia. destruct (Z_lt_ge_dec i j) as [Hlt | Hge].
    - rewrite !(Z.testbit_neg_r _ (i - j)) by lia. now rewrite !andb_false_r.
    - rewrite Z.shiftr_spec by lia. now replace (i - j + j) with i by lia. }
  rewrite El, Z.land_ones, Z.shiftl_mul_pow2, Z.shiftr_div_pow2 by lia.
  assert (E : 2 ^ (64 - j) * 2 ^ j = B64) by (rewrite <- Z.pow_add_r by lia; now replace (64 - j + j) with 64 by lia).
  pose proof (Z.pow_pos_nonneg 2 j ltac:(lia) ltac:(lia)). rewrite Z.mod_small.
  - rewrite Z.mod_eq by lia. lia.
  - split; [apply Z.div_pos; [apply Hb | lia] |]. apply Z.div_lt_upper_bound; [lia |]. unfold is_u64 in Hb. lia.
Qed.

(** ecma_number_trunc cuts the digits after the point off; the result is never a negative zero *)
Lemma number_trunc_spec x : is_u64 x -> number_finite x = true -> is_number (ecma_number_trunc x) (Z.quot (number_num x) (number_den x)).
Proof.
  intros Hx Hf. destruct (number_fields x Hx) as (_ & _ & He & Hfr & _). pose proof (number_recreate x Hx) as Ex. unfold ecma_number_trunc. change exponent_bias with 1023.
  unfold number_finite in Hf. apply Z.ltb_lt in Hf. set (e := ecma_number_biased_exp x) in *. set (f := ecma_number_fraction x) in *.
  destruct (Z.ltb_spec e 1023) as [Hlt | Hge].
  - replace (Z.quot (number_num x) (number_den x)) with 0; [apply (number_of_spec 0); unfold exact_integer; lia |]. unfold number_num, number_den, number_sig, number_exp. fold e f.
    assert (Hs : forall z d, - d < z < d -> Z.quot z d = 0) by (intros z d H; apply Z.quot_small_iff; lia). symmetry. apply Hs. destruct (Z.eqb_spec e 0) as [H0 | H0].
    + change (2 ^ Z.max 0 (-1074)) with 1. assert (2 ^ 52 < 2 ^ Z.max 0 (- -1074)) by (apply Z.pow_lt_mono_r; lia). destruct (ecma_number_sign x); lia.
    + rewrite (Z.max_l 0 (e - 1075)), (Z.max_r 0 (- (e - 1075))) by lia. assert (2 ^ 53 <= 2 ^ (- (e - 1075))) by (apply Z.pow_le_mono_r; lia). change (2 ^ 0) with 1. destruct (ecma_number_sign x); lia.
  - rewrite u32_small by (unfold is_u32; lia). unfold ECMA_NUMBER_FRACTION_WIDTH. unfold number_num, number_den, number_sig, number_exp. fold e f. rewrite (proj2 (Z.eqb_neq e 0)) by lia.
    destruct (Z.leb_spec 52 (e - 1023)) as [Hbig | Hsmall].
    + rewrite (Z.max_l 0 (- (e - 1075))), (Z.max_r 0 (e - 1075)) by lia. change (2 ^ 0) with 1. rewrite Z.quot_1_r. pose proof (Z.pow_pos_nonneg 2 (e - 1075) ltac:(lia) ltac:(lia)).
      split; [exact Hx | | unfold number_finite; now apply Z.ltb_lt |].
      * destruct (ecma_number_sign x); symmetry; [apply Z.ltb_lt | apply Z.ltb_ge]; nia.
      * unfold number_num, number_den, number_sig, number_exp. fold e f. rewrite (proj2 (Z.eqb_neq e 0)) by lia. rewrite (Z.max_l 0 (- (e - 1075))), (Z.max_r 0 (e - 1075)) by lia. ring.
    + set (j := 52 - (e - 1023)). assert (Hj : 1 <= j <= 52) by (unfold j; lia). rewrite land_clear_low by (assumption || lia).
      pose proof (Z.pow_pos_nonneg 2 j ltac:(lia) ltac:(lia)) as HP. assert (E52 : 2 ^ 52 = 2 ^ (52 - j) * 2 ^ j) by (rewrite <- Z.pow_add_r by lia; f_equal; lia).
      assert (Em : x mod 2 ^ j = f mod 2 ^ j). { rewrite Ex at 1. rewrite number_create_value by (assumption || lia). rewrite E52, Z.mul_assoc, Z.add_comm. apply Z_mod_plus_full. }
      pose proof (Z.mod_pos_bound f (2 ^ j) HP). pose proof (Z.mod_le f (2 ^ j) ltac:(lia) HP).
      assert (Eb : x - x mod 2 ^ j = ecma_number_create (ecma_number_sign x) e (f - f mod 2 ^ j)) by (rewrite Em; rewrite Ex at 1; rewrite !number_create_value by lia; lia).
      rewrite Eb. destruct (number_create_fields (ecma_number_sign x) e (f - f mod 2 ^ j) He ltac:(lia)) as (H1 & H2 & H3 & H4).
      rewrite (Z.max_l 0 (e - 1075)), (Z.max_r 0 (- (e - 1075))) by lia. change (2 ^ 0) with 1. replace (- (e - 1075)) with j by (unfold j; lia).
      pose proof (Z.div_mod f (2 ^ j) ltac:(lia)) as Ed. assert (Eq : Z.quot (2 ^ 52 + f) (2 ^ j) = 2 ^ (52 - j) + f / 2 ^ j).
      { rewrite Z.quot_div_nonneg by lia. rewrite E52. rewrite Z.add_comm, Z.div_add by lia. lia. }
      assert (Hq : 0 < 2 ^ (52 - j) + f / 2 ^ j) by (pose proof (Z.pow_pos_nonneg 2 (52 - j) ltac:(lia) ltac:(lia)); pose proof (Z.div_pos f (2 ^ j) ltac:(lia) HP); lia).
      assert (EQ : forall s : bool, Z.quot ((if s then -1 else 1) * (2 ^ 52 + f) * 1) (2 ^ j) = (if s then -1 else 1) * (2 ^ (52 - j) + f / 2 ^ j)).
      { intros []; [replace (-1 * (2 ^ 52 + f) * 1) with (- (2 ^ 52 + f)) by ring; rewrite Z.quot_opp_l by lia | replace (1 * (2 ^ 52 + f) * 1) with (2 ^ 52 + f) by ring]; rewrite Eq; ring. }
      rewrite EQ. split; [exact H1 | rewrite H2 | unfold number_finite; rewrite H3; now apply Z.ltb_lt |].
      * destruct (ecma_number_sign x); symmetry; [apply Z.ltb_lt | apply Z.ltb_ge]; lia.
      * unfold number_num, number_den, number_sig, number_exp. rewrite H2, H3, H4. rewrite (proj2 (Z.eqb_neq e 0)) by lia. rewrite (Z.max_l 0 (e - 1075)), (Z.max_r 0 (- (e - 1075))) by lia. change (2 ^ 0) with 1. replace (- (e - 1075)) with j by (unfold j; lia).
        assert (Eg : 2 ^ 52 + (f - f mod 2 ^ j) = (2 ^ (52 - j) + f / 2 ^ j) * 2 ^ j) by (rewrite Z.mul_add_distr_r, <- E52; lia). rewrite Eg. ring.
Qed.

(** ** Division *)

(** Between two multiples of the denominator *)
Lemma floor_between k n d : 0 < d -> k * d < n < (k + 1) * d -> n / d = k /\ Z.quot n d = if 0 <=? k then k else k + 1.
Proof.
  intros Hd H. assert (E : n / d = k) by (symmetry; apply Z.div_unique_pos with (r := n - k * d); [lia | ring]). split; [exact E |].
  destruct (Z.leb_spec 0 k).
  - rewrite Z.quot_div_nonneg by nia. exact E.
  - assert (E' : - n / d = - (k + 1)) by (symmetry; apply Z.div_unique_pos with (r := (k + 1) * d - n); [lia | ring]).
    replace n with (- - n) by lia. rewrite Z.quot_opp_l, Z.quot_div_nonneg, E' by nia. lia.
Qed.

(** The quotient of integers below 2^53, on the same side of every integer as the exact quotient *)
Lemma number_divide_of x y a d : is_number x a -> is_number y d -> - 9007199254740992 < a < 9007199254740992 -> 0 < d < 9007199254740992 ->
  let b := number_divide x y in
  (a mod d = 0 -> b = number_of_int (a / d)) /\
  (a mod d <> 0 -> is_u64 b /\ number_finite b = true /\ ecma_number_sign b = (a <? 0) /\ a / d * number_den b < number_num b < (a / d + 1) * number_den b).
Proof.
  intros Hx Hy Ha Hd. unfold number_divide. destruct (is_number_finite x a Hx) as [-> ->], (is_number_finite y d Hy) as [-> ->]. cbn [orb].
  rewrite (is_number_zero y d Hy), (proj2 (Z.eqb_neq d 0)) by lia. rewrite (in_value _ _ Hx), (in_value _ _ Hy), (in_sign _ _ Hx), (in_sign _ _ Hy).
  pose proof (number_den_pos x) as Dx. pose proof (number_den_pos y) as Dy. rewrite (Z.sgn_pos (d * number_den y)), (Z.abs_eq (d * number_den y)) by nia. rewrite (proj2 (Z.ltb_ge d 0)), xorb_false_r, Z.mul_1_l by lia.
  rewrite (number_round_ratio _ _ _ a d) by nia. split.
  - intros Hm. rewrite (Z.div_mod a d) at 2 by lia. rewrite Hm, Z.add_0_r, (Z.mul_comm d). apply number_round_of; [lia |]. intros H0. apply Z.ltb_ge. pose proof (Z.div_mod a d ltac:(lia)). nia.
  - intros Hm. assert (Ha0 : a <> 0) by (intros ->; now rewrite Z.mod_0_l in Hm by lia). unfold number_round. rewrite (proj2 (Z.eqb_neq a 0)) by exact Ha0.
    assert (He : -1074 <= last_digit (Z.abs a) d <= 970).
    { pose proof (last_digit_bounds (Z.abs a) d ltac:(lia) ltac:(lia)). pose proof (Z.log2_nonneg (Z.abs a)). pose proof (Z.log2_nonneg d).
      assert (Z.log2 (Z.abs a) <= Z.log2 (2 ^ 53)) by (apply Z.log2_le_mono; lia). assert (Z.log2 d <= Z.log2 (2 ^ 53)) by (apply Z.log2_le_mono; lia). rewrite Z.log2_pow2 in * by lia. lia. }
    destruct (round_quotient_error (a <? 0) (Z.abs a) d ltac:(lia) ltac:(lia) He) as (H1 & H2 & H3 & H4 & H5 & H6 & _).
    set (b := round_quotient (a <? 0) (Z.abs a) d) in *. pose proof (number_den_pos b) as DB. set (D := number_den b) in *. set (N := number_num b) in *. split; [exact H1 |]. split; [exact H3 |]. split; [exact H2 |]. clearbody N D. clear H1 H2 H3 He.
    assert (Hd1 : Z.abs (Z.abs N * d - Z.abs a * D) < D) by (change (2 ^ 53) with 9007199254740992 in H6; nia).
    assert (Hd2 : - D < N * d - a * D < D) by (destruct (Z.ltb_spec a 0); [rewrite (Z.abs_neq a) in Hd1 by lia | rewrite (Z.abs_eq a) in Hd1 by lia]; rewrite H5; lia).
    pose proof (Z.div_mod a d ltac:(lia)) as E. pose proof (Z.mod_pos_bound a d ltac:(lia)). set (k := a / d) in *. set (r := a mod d) in *. clearbody k r. clear H4 H5 H6 Hd1.
    split; apply (Z.mul_lt_mono_pos_r d); nia.
Qed.

(** Casting the quotient to an integer truncates, and floor rounds down *)
Lemma number_divide_to_int32 x y a d : is_number x a -> is_number y d -> - 9007199254740992 < a < 9007199254740992 -> 0 < d < 9007199254740992 ->
  number_to_int32 (number_divide x y) = int32 (Z.quot a d).
Proof.
  intros Hx Hy Ha Hd. destruct (number_divide_of x y a d Hx Hy Ha Hd) as [H0 H1]. pose proof (Z.div_mod a d ltac:(lia)) as E. pose proof (Z.mod_pos_bound a d ltac:(lia)). destruct (Z.eq_dec (a mod d) 0) as [Hm | Hm].
  - rewrite (H0 Hm), (number_to_int32_of _ (a / d)) by (apply number_of_spec; unfold exact_integer; nia). f_equal. rewrite Hm, Z.add_0_r in E. rewrite E at 2. now rewrite Z.mul_comm, Z.quot_mul by lia.
  - destruct (H1 Hm) as (_ & Hf & _ & Hn). unfold number_to_int32, ecma_number_is_finite. rewrite Hf. destruct (floor_between _ _ _ (number_den_pos _) Hn) as [_ ->].
    destruct (floor_between (a / d) a d ltac:(lia) ltac:(lia)) as [_ ->]. reflexivity.
Qed.

Lemma number_divide_floor x y a d : is_number x a -> is_number y d -> - 9007199254740992 < a < 9007199254740992 -> 0 < d < 9007199254740992 ->
  number_floor (number_divide x y) = number_of_int (a / d).
Proof.
  intros Hx Hy Ha Hd. destruct (number_divide_of x y a d Hx Hy Ha Hd) as [H0 H1]. pose proof (Z.div_mod a d ltac:(lia)) as E. pose proof (Z.mod_pos_bound a d ltac:(lia)). destruct (Z.eq_dec (a mod d) 0) as [Hm | Hm].
  - rewrite (H0 Hm). apply number_floor_of, number_of_spec. unfold exact_integer. nia.
  - destruct (H1 Hm) as (_ & Hf & Hs & Hn). unfold number_floor, ecma_number_is_finite. rewrite Hf, Hs. cbn [negb]. destruct (floor_between _ _ _ (number_den_pos _) Hn) as [-> _].
    rewrite <- (Z.mul_1_r (a / d)) at 1. apply number_round_of; [lia |]. intros Hk. apply Z.ltb_ge. nia.
Qed.

(** The error of a quotient of finite numbers *)
Lemma number_divide_error x y : is_u64 x -> number_finite x = true -> is_u64 y -> number_finite y = true ->
  0 < Z.abs (number_num x) * number_den y < 2 ^ 1000 -> 0 < number_num y * number_den x < 2 ^ 1000 ->
  let b := number_divide x y in
  is_u64 b /\ number_finite b = true /\ ecma_number_sign b = (number_num x <? 0) /\
  Z.abs (number_num b * (number_num y * number_den x) - number_num x * number_den y * number_den b) * 2 ^ 53 <= Z.abs (number_num x) * number_den y * number_den b /\
  Z.log2 (Z.abs (number_num x) * number_den y) - Z.log2 (number_num y * number_den x) - 53 <= number_exp b.
Proof.
  intros Ux Fx Uy Fy Hn Hd. pose proof (number_den_pos x) as Dx. pose proof (number_den_pos y) as Dy. unfold number_divide.
  destruct (number_tests x Ux) as [Tx _]. rewrite Fx in Tx. apply orb_false_iff in Tx as [-> ->]. destruct (number_tests y Uy) as [Ty _]. rewrite Fy in Ty. apply orb_false_iff in Ty as [-> ->]. cbn [orb].
  rewrite (number_num_zero y Uy), (proj2 (Z.eqb_neq (number_num y) 0)) by nia. assert (Hy : 0 < number_num y) by nia. rewrite Z.sgn_pos, Z.abs_eq, Z.mul_1_l by lia.
  assert (Hsx : number_num x <> 0) by nia. set (n := Z.abs (number_num x) * number_den y) in *. set (d := number_num y * number_den x) in *. unfold number_round.
  rewrite (proj2 (Z.eqb_neq (number_num x * number_den y) 0)) by nia. replace (Z.abs (number_num x * number_den y)) with n by (unfold n; rewrite Z.abs_mul, (Z.abs_eq (number_den y)); lia).
  replace (number_num x * number_den y <? 0) with (number_num x <? 0) by (destruct (Z.ltb_spec (number_num x) 0), (Z.ltb_spec (number_num x * number_den y) 0); nia).
  pose proof (last_digit_bounds n d ltac:(lia) ltac:(lia)) as Hl. pose proof (Z.log2_nonneg n). pose proof (Z.log2_nonneg d).
  assert (Z.log2 n < 1000) by (apply Z.log2_lt_pow2; lia). assert (Z.log2 d < 1000) by (apply Z.log2_lt_pow2; lia).
  destruct (round_quotient_error (number_num x <? 0) n d ltac:(lia) ltac:(lia) ltac:(lia)) as (R1 & R2 & R3 & R4 & R5 & R6 & R7).
  set (b := round_quotient (number_num x <? 0) n d) in *. split; [exact R1 |]. split; [exact R3 |]. split; [exact R2 |]. split; [| lia].
  replace (number_num b * d - number_num x * number_den y * number_den b) with ((if number_num x <? 0 then -1 else 1) * (Z.abs (number_num b) * d - n * number_den b)).
  - rewrite Z.abs_mul. replace (Z.abs (if number_num x <? 0 then -1 else 1)) with 1 by (now destruct (_ <? _)). rewrite Z.mul_1_l. exact R6.
  - rewrite R5 at 2. unfold n. destruct (Z.ltb_spec (number_num x) 0); [rewrite (Z.abs_neq (number_num x)) by lia | rewrite (Z.abs_eq (number_num x)) by lia]; ring.
Qed.

Lemma number_divide_int_error x y a d : is_number x a -> is_number y d -> a <> 0 -> 0 < d -> Z.abs a < 2 ^ 1000 -> d < 2 ^ 1000 ->
  let b := number_divide x y in
  is_u64 b /\ number_finite b = true /\ ecma_number_sign b = (a <? 0) /\ number_num b <> 0 /\
  Z.abs (number_num b * d - a * number_den b) * 2 ^ 53 <= Z.abs a * number_den b /\ Z.log2 (Z.abs a) - Z.log2 d - 53 <= number_exp b.
Proof.
  intros Hx Hy Ha0 Hd Ha Hd'. unfold number_divide. destruct (is_number_finite x a Hx) as [-> ->], (is_number_finite y d Hy) as [-> ->]. cbn [orb].
  rewrite (is_number_zero y d Hy), (proj2 (Z.eqb_neq d 0)) by lia. rewrite (in_value _ _ Hx), (in_value _ _ Hy), (in_sign _ _ Hx), (in_sign _ _ Hy).
  pose proof (number_den_pos x). pose proof (number_den_pos y). rewrite (Z.sgn_pos (d * number_den y)), (Z.abs_eq (d * number_den y)) by nia. rewrite (proj2 (Z.ltb_ge d 0)), xorb_false_r, Z.mul_1_l by lia.
  rewrite (number_round_ratio _ _ _ a d) by nia. unfold number_round. rewrite (proj2 (Z.eqb_neq a 0)) by exact Ha0.
  pose proof (last_digit_bounds (Z.abs a) d ltac:(lia) Hd) as Hl. pose proof (Z.log2_nonneg (Z.abs a)). pose proof (Z.log2_nonneg d).
  assert (Z.log2 (Z.abs a) < 1000) by (apply Z.log2_lt_pow2; lia). assert (Z.log2 d < 1000) by (apply Z.log2_lt_pow2; lia).
  destruct (round_quotient_error (a <? 0) (Z.abs a) d ltac:(lia) Hd ltac:(lia)) as (R1 & R2 & R3 & R4 & R5 & R6 & R7).
  set (b := round_quotient (a <? 0) (Z.abs a) d) in *. split; [exact R1 |]. split; [exact R3 |]. split; [exact R2 |]. split; [lia |]. split; [| lia].
  replace (number_num b * d - a * number_den b) with ((if a <? 0 then -1 else 1) * (Z.abs (number_num b) * d - Z.abs a * number_den b)).
  - rewrite Z.abs_mul. replace (Z.abs (if a <? 0 then -1 else 1)) with 1 by (now destruct (_ <? _)). rewrite Z.mul_1_l. exact R6.
  - rewrite R5 at 2. destruct (Z.ltb_spec a 0); [rewrite (Z.abs_neq a) by lia | rewrite (Z.abs_eq a) by lia]; ring.
Qed.

(** ** Each integer is one number *)

Lemma number_scaled_value b : is_u64 b -> number_num b * 2 ^ 1074 = (if ecma_number_sign b then -1 else 1) * number_sig b * 2 ^ (number_exp b + 1074) * number_den b.
Proof.
  intros Hb. destruct (number_fields b Hb) as (_ & _ & He & _). unfold number_num, number_den. assert (Hx : -1074 <= number_exp b) by (unfold number_exp; destruct (Z.eqb_spec (ecma_number_biased_exp b) 0); lia).
  rewrite <- !Z.mul_assoc. do 2 f_equal. rewrite <- !Z.pow_add_r by lia. f_equal. lia.
Qed.

Lemma is_number_fields b k : is_number b k -> k <> 0 -> 2 ^ 52 <= number_sig b < 2 ^ 53 /\ 1 <= ecma_number_biased_exp b /\ Z.abs k * 2 ^ 1074 = number_sig b * 2 ^ (number_exp b + 1074).
Proof.
  intros [Hb Hs _ Hv] Hk. destruct (number_fields b Hb) as (_ & _ & He & Hf & _). pose proof (number_scaled_value b Hb) as E. rewrite Hv in E. pose proof (number_den_pos b).
  assert (E1 : Z.abs k * 2 ^ 1074 = number_sig b * 2 ^ (number_exp b + 1074)).
  { apply (Z.mul_cancel_r _ _ (number_den b)); [lia |]. rewrite Hs in E. destruct (Z.ltb_spec k 0); [rewrite Z.abs_neq by lia | rewrite Z.abs_eq by lia]; lia. }
  split; [| split; [| exact E1]]; unfold number_sig, number_exp in *; destruct (Z.eqb_spec (ecma_number_biased_exp b) 0); lia.
Qed.

Lemma number_of_unique x y k : is_number x k -> is_number y k -> x = y.
Proof.
  intros Hx Hy. rewrite (number_recreate x (in_u64 _ _ Hx)), (number_recreate y (in_u64 _ _ Hy)), (in_sign _ _ Hx), (in_sign _ _ Hy).
  destruct (Z.eq_dec k 0) as [-> | Hk].
  - assert (H : forall b, is_number b 0 -> ecma_number_biased_exp b = 0 /\ ecma_number_fraction b = 0).
    { intros b Hb. destruct (number_fields b (in_u64 _ _ Hb)) as (_ & _ & He & Hf & Hl). pose proof (is_number_zero b 0 Hb) as E. unfold ecma_number_is_zero in E. apply Z.eqb_eq in E. rewrite Hl in E. lia. }
    destruct (H x Hx) as [-> ->], (H y Hy) as [-> ->]. reflexivity.
  - destruct (is_number_fields x k Hx Hk) as (Sx & Bx & Ex), (is_number_fields y k Hy Hk) as (Sy & By & Ey). rewrite Ex in Ey.
    assert (H : forall s e s' e', 2 ^ 52 <= s < 2 ^ 53 -> 2 ^ 52 <= s' < 2 ^ 53 -> -1074 <= e -> s * 2 ^ (e + 1074) = s' * 2 ^ (e' + 1074) -> ~ e < e').
    { intros s e s' e' H1 H2 H3 E Hlt. replace (e' + 1074) with (e + 1074 + (e' - e)) in E by lia. rewrite (Z.pow_add_r 2 (e + 1074) (e' - e)) in E by lia. pose proof (Z.pow_pos_nonneg 2 (e + 1074) ltac:(lia) ltac:(lia)) as P.
      assert (2 <= 2 ^ (e' - e)) by (change 2 with (2 ^ 1) at 1; apply Z.pow_le_mono_r; lia). rewrite (Z.mul_comm (2 ^ (e + 1074))), Z.mul_assoc in E. apply Z.mul_cancel_r in E; [| lia]. change (2 ^ 53) with (2 * 2 ^ 52) in *. nia. }
    unfold number_sig, number_exp in *. rewrite (proj2 (Z.eqb_neq (ecma_number_biased_exp x) 0)), (proj2 (Z.eqb_neq (ecma_number_biased_exp y) 0)) in * by lia.
    pose proof (H _ (ecma_number_biased_exp x - 1075) _ _ Sx Sy ltac:(lia) Ey). pose proof (H _ (ecma_number_biased_exp y - 1075) _ _ Sy Sx ltac:(lia) (eq_sym Ey)).
    assert (Ee : ecma_number_biased_exp x = ecma_number_biased_exp y) by lia. rewrite Ee in *. apply Z.mul_cancel_r in Ey; [| pose proof (Z.pow_pos_nonneg 2 (ecma_number_biased_exp y - 1075 + 1074) ltac:(lia) ltac:(lia)); lia]. f_equal. lia.
Qed.

Lemma number_trunc_of x a : exact_integer a -> is_number x a -> ecma_number_trunc x = number_of_int a.
Proof.
  intros Ha Hx. apply (number_of_unique _ _ a); [| now apply number_of_spec]. pose proof (number_trunc_spec x (in_u64 _ _ Hx) (in_finite _ _ Hx)) as H.
  rewrite (in_value _ _ Hx), Z.quot_mul in H by (pose proof (number_den_pos x); lia). exact H.
Qed.

Lemma number_fabs_int a : exact_integer a -> number_fabs (number_of_int a) = number_of_int (Z.abs a).
Proof. intros Ha. apply (number_of_unique _ _ (Z.abs a)); [now apply number_fabs_of, number_of_spec | apply number_of_spec; unfold exact_integer in *; lia]. Qed.

(** ** Results are numbers

    Every result is a pattern of 64 bits, whatever the operands. *)

Lemma number_create_u64 s e f : 0 <= e < 2048 -> 0 <= f < 2 ^ 52 -> is_u64 (ecma_number_create s e f).
Proof. intros He Hf. apply (number_create_fields s e f He Hf). Qed.

Lemma number_pack_u64 s m e : 0 <= m <= 2 ^ 53 -> -1074 <= e -> is_u64 (number_pack s m e).
Proof.
  intros Hm He. assert (H : forall m e, 0 <= m < 2 ^ 53 -> -1074 <= e -> is_u64 (if 971 <? e then ecma_number_make_infinity s else if m <? 2 ^ 52 then ecma_number_create s 0 m else ecma_number_create s (e + 1075) (m - 2 ^ 52))).
  { clear m e Hm He. intros m e Hm He. change (2 ^ 53) with (2 * 2 ^ 52) in Hm. destruct (Z.ltb_spec 971 e); [destruct s; split; vm_compute; congruence |]. destruct (Z.ltb_spec m (2 ^ 52)); apply number_create_u64; lia. }
  unfold number_pack. destruct (Z.eqb_spec m (2 ^ 53)); apply H; try lia.
Qed.

Lemma nearest_even_bounds n d k : 0 < d -> 0 <= n <= k * d -> 0 <= nearest_even n d <= k.
Proof. intros Hd Hn. pose proof (nearest_even_spec n d Hd). nia. Qed.

Lemma round_quotient_u64 s n d : 0 <= n -> 0 < d -> is_u64 (round_quotient s n d).
Proof.
  intros Hn Hd. unfold round_quotient. destruct (Z.eqb_spec n 0); [apply number_create_u64; lia |]. set (e0 := last_digit n d). set (e := Z.max e0 (-1074)).
  apply number_pack_u64; [| lia]. apply nearest_even_bounds; [now apply unit_den_pos |]. pose proof (unit_den_pos d e Hd). pose proof (unit_den_pos d e0 Hd).
  destruct (last_digit_normal n d ltac:(lia) Hd) as [_ N]. fold e0 in N. pose proof (unit_cross n d e0 e ltac:(lia)) as C. pose proof (Z.pow_pos_nonneg 2 (e - e0) ltac:(lia) ltac:(lia)) as P.
  assert (0 <= unit_num n e) by (unfold unit_num; pose proof (Z.pow_pos_nonneg 2 (Z.max 0 (- e)) ltac:(lia) ltac:(lia)); nia). split; [assumption |].
  set (U := unit_num n e) in *. set (V := unit_den d e) in *. set (U0 := unit_num n e0) in *. set (V0 := unit_den d e0) in *. set (Q := 2 ^ (e - e0)) in *. clearbody U V U0 V0 Q.
  assert (U * V0 <= U * V0 * Q) by nia. assert (U0 * V <= 2 ^ 53 * V0 * V) by nia. nia.
Qed.

Lemma number_round_u64 s n d : 0 < d -> is_u64 (number_round s n d).
Proof. intros Hd. apply round_quotient_u64; lia. Qed.

Lemma number_of_u64 z : is_u64 (number_of_int z).
Proof. apply number_round_u64. lia. Qed.

Lemma number_make_nan_u64 : is_u64 number_make_nan.
Proof. split; vm_compute; congruence. Qed.

Lemma number_plus_u64 a b : is_u64 a -> is_u64 b -> is_u64 (number_plus a b).
Proof.
  intros Ha Hb. unfold number_plus. destruct (_ || _); [apply number_make_nan_u64 |]. destruct (ecma_number_is_infinity a); [destruct (_ && _); [apply number_make_nan_u64 | exact Ha] |].
  destruct (ecma_number_is_infinity b); [exact Hb |]. apply number_round_u64. pose proof (number_den_pos a). pose proof (number_den_pos b). nia.
Qed.

Lemma number_opp_u64 a : is_u64 a -> is_u64 (number_opp a).
Proof. intros Ha. destruct (number_fields a Ha) as (_ & _ & He & Hf & _). now apply number_create_u64. Qed.

Lemma number_minus_u64 a b : is_u64 a -> is_u64 b -> is_u64 (number_minus a b).
Proof. intros Ha Hb. apply number_plus_u64; [exact Ha | now apply number_opp_u64]. Qed.

Lemma number_times_u64 a b : is_u64 (number_times a b).
Proof.
  unfold number_times. destruct (_ || _); [apply number_make_nan_u64 |]. destruct (_ || _); [destruct (_ || _); [apply number_make_nan_u64 |] |].
  - destruct (xorb _ _); split; vm_compute; congruence.
  - apply number_round_u64. pose proof (number_den_pos a). pose proof (number_den_pos b). nia.
Qed.

Lemma number_trunc_u64 a : is_u64 a -> is_u64 (ecma_number_trunc a).
Proof.
  intros Ha. unfold ecma_number_trunc. destruct (_ <? _); [apply number_create_u64; lia |]. unfold ECMA_NUMBER_FRACTION_WIDTH. set (u := u32 (ecma_number_biased_exp a - exponent_bias)).
  assert (Hu : 0 <= u) by (apply Z.mod_pos_bound; reflexivity). destruct (Z.leb_spec 52 u); [exact Ha |]. rewrite land_clear_low by (assumption || lia).
  pose proof (Z.pow_pos_nonneg 2 (52 - u) ltac:(lia) ltac:(lia)) as P. pose proof (Z.mod_pos_bound a (2 ^ (52 - u)) P). pose proof (Z.mod_le a (2 ^ (52 - u)) (proj1 Ha) P). unfold is_u64 in *. lia.
Qed.

(** ** Comparison of an integer with a number *)

Lemma finite_tests x : is_u64 x -> number_finite x = true -> ecma_number_is_nan x = false /\ ecma_number_is_infinity x = false.
Proof. intros Hx Hf. destruct (number_tests x Hx) as [T _]. rewrite Hf in T. now apply orb_false_iff in T. Qed.

Lemma number_lt_int k x : exact_integer k -> is_u64 x -> number_finite x = true -> number_lt (number_of_int k) x = (k * number_den x <? number_num x).
Proof.
  intros Hk Hx Hf. pose proof (number_of_spec k Hk) as Nk. destruct (is_number_finite _ _ Nk) as [N1 I1], (finite_tests x Hx Hf) as [N2 I2]. unfold number_lt, number_compare, number_key. rewrite N1, N2, I1, I2, (in_value _ _ Nk). cbn [negb andb].
  pose proof (number_den_pos (number_of_int k)) as D. replace (k * number_den (number_of_int k) * number_den x) with (k * number_den x * number_den (number_of_int k)) by ring.
  rewrite <- Zmult_compare_compat_r by lia. reflexivity.
Qed.

Lemma number_fabs_fields x : is_u64 x -> number_finite x = true ->
  is_u64 (number_fabs x) /\ number_finite (number_fabs x) = true /\ number_num (number_fabs x) = Z.abs (number_num x) /\ number_den (number_fabs x) = number_den x.
Proof.
  intros Hx Hf. destruct (number_fields x Hx) as (_ & _ & He & Hfr & _). destruct (number_create_fields false (ecma_number_biased_exp x) (ecma_number_fraction x) He Hfr) as (H1 & H2 & H3 & H4).
  unfold number_finite, number_num, number_den, number_sig, number_exp, number_fabs in *. rewrite H2, H3, H4. splits; try assumption; try reflexivity.
  set (s := if ecma_number_biased_exp x =? 0 then ecma_number_fraction x else 2 ^ 52 + ecma_number_fraction x). assert (0 <= s) by (unfold s; destruct (_ =? 0); lia).
  set (p := 2 ^ Z.max 0 _). assert (0 <= p) by (apply Z.pow_nonneg; lia). destruct (ecma_number_sign x); nia.
Qed.

Lemma number_plus_nan a b : ecma_number_is_nan a = true -> number_plus a b = number_make_nan.
Proof. intros H. unfold number_plus. now rewrite H. Qed.
