(* ===== verification/Dates.v ===== *)
(** * Dates: src/jjs-core/ecma/builtin-objects/ecma-builtin-helpers-date.c, ecma-builtin-date.c and ecma-builtin-date-prototype.c

    A time value is a number, the milliseconds since the epoch, or NaN.  The
    functions compute with int32_t and with binary64; [None] is a failed
    assertion, an int32_t overflow, a conversion to int32_t of a number that does
    not fit, or a write behind the end of a buffer.  The adjustment of the local
    time zone comes from the platform and is a parameter. *)
From Stdlib Require Import ZArith List Lia Bool String Ascii.
From S2P Require Import Prelude BigIntNumber LitChars MagicTable Binary64.
Import ListNotations.
#[local] Open Scope Z_scope.
#[local] Open Scope partial_scope.

(** ** Constants (ecma-builtin-helpers.h) *)

Definition ECMA_DATE_HOURS_PER_DAY : Z := 24.
Definition ECMA_DATE_MINUTES_PER_HOUR : Z := 60.
Definition ECMA_DATE_SECONDS_PER_MINUTE : Z := 60.
Definition ECMA_DATE_MS_PER_SECOND : Z := 1000.
Definition ECMA_DATE_MS_PER_MINUTE : Z := ECMA_DATE_MS_PER_SECOND * ECMA_DATE_SECONDS_PER_MINUTE.
Definition ECMA_DATE_MS_PER_HOUR : Z := ECMA_DATE_MS_PER_MINUTE * ECMA_DATE_MINUTES_PER_HOUR.
Definition ECMA_DATE_MS_PER_DAY : Z := ECMA_DATE_MS_PER_HOUR * ECMA_DATE_HOURS_PER_DAY.
Definition ECMA_DATE_DAYS_IN_YEAR : Z := 365.
Definition ECMA_DATE_DAYS_IN_LEAP_YEAR : Z := 366.
Definition ECMA_DATE_MAX_VALUE : Z := number_of_int 8640000000000000.
Definition INT32_MAX : Z := 2147483647.

Definition day_names_p : list (list Z) := map bytes_of_string ["Sun"; "Mon"; "Tue"; "Wed"; "Thu"; "Fri"; "Sat"]%string.
Definition month_names_p : list (list Z) :=
  map bytes_of_string ["Jan"; "Feb"; "Mar"; "Apr"; "May"; "Jun"; "Jul"; "Aug"; "Sep"; "Oct"; "Nov"; "Dec"]%string.

(** JJS_ASSERT *)
Definition jjs_assert {A} (test : bool) (k : option A) : option A := if test then k else None.

(** ** Days and years *)

Definition ecma_date_day_from_time (time : Z) : option Z :=
  jjs_assert (negb (ecma_number_is_nan time)) (
  let time := if number_lt time (number_of_int 0) then number_minus time (number_of_int (ECMA_DATE_MS_PER_DAY - 1)) else time in
  number_to_int32 (number_divide time (number_of_int ECMA_DATE_MS_PER_DAY))).

(** floor ((year - base) / step) with a floating point division *)
Definition floor_years (years step : Z) : Z := number_floor (number_divide (number_of_int years) (number_of_int step)).

Definition ecma_date_day_from_year (year : Z) : option Z :=
  let? y1970 := int32 (year - 1970) in
  let? y1969 := int32 (year - 1969) in
  let? y1901 := int32 (year - 1901) in
  let? y1601 := int32 (year - 1601) in
  let? days := int32 (365 * y1970) in
  if 1970 <=? year then
    let? s := int32 (days + Z.quot y1969 4) in
    let? s := int32 (s - Z.quot y1901 100) in
    int32 (s + Z.quot y1601 400)
  else
    number_to_int32 (number_plus (number_minus (number_plus (number_of_int days) (floor_years y1969 4)) (floor_years y1901 100)) (floor_years y1601 400)).

Definition ecma_date_days_in_year (year : Z) : Z :=
  if negb (Z.rem year 4 =? 0) || ((Z.rem year 100 =? 0) && negb (Z.rem year 400 =? 0)) then ECMA_DATE_DAYS_IN_YEAR
  else ECMA_DATE_DAYS_IN_LEAP_YEAR.

Definition ecma_date_in_leap_year (year : Z) : Z := ecma_date_days_in_year year - ECMA_DATE_DAYS_IN_YEAR.

Definition first_day_in_month (leap : Z) : list Z :=
  if leap =? 0 then [0; 31; 59; 90; 120; 151; 181; 212; 243; 273; 304; 334]
  else [0; 31; 60; 91; 121; 152; 182; 213; 244; 274; 305; 335].
Definition first_day (leap month : Z) : Z := nth (Z.to_nat month) (first_day_in_month leap) 0.

Definition ecma_date_year_from_time (time : Z) : option Z :=
  jjs_assert (negb (ecma_number_is_nan time)) (
  let days := number_divide time (number_of_int ECMA_DATE_MS_PER_DAY) in
  let? approx := number_to_int32 (number_plus (number_floor (number_divide days (number_round false 3652425 10000))) (number_of_int 1970)) in
  let? first := ecma_date_day_from_year approx in
  let year_ms := first * ECMA_DATE_MS_PER_DAY in
  let? approx := (if number_lt time (number_of_int year_ms) then int32 (approx - 1) else Some approx) in
  if number_le (number_of_int (year_ms + ecma_date_days_in_year approx * ECMA_DATE_MS_PER_DAY)) time then int32 (approx + 1) else Some approx).

(** The loop over the months that follow month [i - 1] *)
Fixpoint month_loop (first_days : list Z) (i day_within_year : Z) : Z :=
  match first_days with
  | [] => 11
  | first :: first_days => if day_within_year <? first then i - 1 else month_loop first_days (i + 1) day_within_year
  end.

(** The leap flag of the year and the day in it; ecma_date_month_from_time and ecma_date_date_from_time begin with it *)
Definition day_within_year (time : Z) : option (Z * Z) :=
  let? year := ecma_date_year_from_time time in
  let? day := ecma_date_day_from_time time in
  let? first := ecma_date_day_from_year year in
  let? d := int32 (day - first) in
  jjs_assert ((0 <=? d) && (d <? ECMA_DATE_DAYS_IN_LEAP_YEAR)) (Some (ecma_date_in_leap_year year, d)).

Definition ecma_date_month_from_time (time : Z) : option Z :=
  jjs_assert (negb (ecma_number_is_nan time)) (
  let? (in_leap_year, d) := day_within_year time in
  Some (month_loop (tl (first_day_in_month in_leap_year)) 1 d)).

Definition ecma_date_date_from_time (time : Z) : option Z :=
  jjs_assert (negb (ecma_number_is_nan time)) (
  let? (in_leap_year, d) := day_within_year time in
  let month := month_loop (tl (first_day_in_month in_leap_year)) 1 d in
  Some (d + 1 - first_day in_leap_year month)).

Definition ecma_date_week_day (time : Z) : option Z :=
  jjs_assert (negb (ecma_number_is_nan time)) (
  let? day := ecma_date_day_from_time time in
  let? day := int32 (day + 4) in
  let week_day := Z.rem day 7 in
  Some (if 0 <=? week_day then week_day else week_day + 7)).

(** ** Time within the day *)

Definition ecma_date_time_in_day_from_time (time : Z) : option Z :=
  jjs_assert (negb (ecma_number_is_nan time)) (
  let? day := ecma_date_day_from_time time in
  number_to_int32 (number_minus time (number_times (number_of_int day) (number_of_int ECMA_DATE_MS_PER_DAY)))).

Definition ecma_date_hour_from_time (time : Z) : option Z :=
  let? time_in_day := ecma_date_time_in_day_from_time time in
  Some (Z.quot time_in_day ECMA_DATE_MS_PER_HOUR).
Definition ecma_date_min_from_time (time : Z) : option Z :=
  let? time_in_day := ecma_date_time_in_day_from_time time in
  Some (Z.rem (Z.quot time_in_day ECMA_DATE_MS_PER_MINUTE) ECMA_DATE_MINUTES_PER_HOUR).
Definition ecma_date_sec_from_time (time : Z) : option Z :=
  let? time_in_day := ecma_date_time_in_day_from_time time in
  Some (Z.rem (Z.quot time_in_day ECMA_DATE_MS_PER_SECOND) ECMA_DATE_SECONDS_PER_MINUTE).
Definition ecma_date_ms_from_time (time : Z) : option Z :=
  let? time_in_day := ecma_date_time_in_day_from_time time in
  Some (Z.rem time_in_day ECMA_DATE_MS_PER_SECOND).

(** ** Making times *)

Definition ecma_date_make_time (hour min sec ms : Z) : Z :=
  if negb (ecma_number_is_finite hour) || negb (ecma_number_is_finite min) || negb (ecma_number_is_finite sec) || negb (ecma_number_is_finite ms)
  then number_make_nan
  else
    let h := ecma_number_trunc hour in
    let m := ecma_number_trunc min in
    let s := ecma_number_trunc sec in
    let milli := ecma_number_trunc ms in
    number_plus (number_plus (number_plus (number_times h (number_of_int ECMA_DATE_MS_PER_HOUR)) (number_times m (number_of_int ECMA_DATE_MS_PER_MINUTE)))
                             (number_times s (number_of_int ECMA_DATE_MS_PER_SECOND))) milli.

Definition ecma_date_make_day (year month date : Z) : option Z :=
  if negb (ecma_number_is_finite year) || negb (ecma_number_is_finite month) || negb (ecma_number_is_finite date)
     || number_lt (number_of_int INT32_MAX) (number_fabs year)
  then Some number_make_nan
  else
    let? y := number_to_int32 year in
    let m := ecma_number_trunc month in
    let dt := ecma_number_trunc date in
    let? carry := number_to_int32 (number_floor (number_divide m (number_of_int 12))) in
    let? ym := int32 (y + carry) in
    let? mn := number_to_int32 (number_fmod m (number_of_int 12)) in
    let mn := if mn <? 0 then mn + 12 else mn in
    let? first := ecma_date_day_from_year ym in
    let? days := int32 (first + first_day (ecma_date_in_leap_year ym) mn) in
    let days := number_plus (number_of_int days) (number_minus dt (number_of_int 1)) in
    Some (number_times days (number_of_int ECMA_DATE_MS_PER_DAY)).

Definition ecma_date_make_date (day time : Z) : Z :=
  if negb (ecma_number_is_finite day) || negb (ecma_number_is_finite time) then number_make_nan else number_plus day time.

Definition ecma_date_time_clip (time : Z) : Z :=
  if negb (ecma_number_is_finite time) || number_lt ECMA_DATE_MAX_VALUE (number_fabs time) then number_make_nan else ecma_number_trunc time.

(** ** Printing *)

Section Zone.
(** jjs_platform_time_local_tza_impl: the adjustment for a time, or a failure *)
Context (local_tza_impl : Z -> option Z).

Definition ecma_date_local_time_zone_adjustment (time : Z) : Z := match local_tza_impl time with Some tza => tza | None => 0 end.

Definition ecma_date_utc (time : Z) : Z := number_minus time (number_of_int (ecma_date_local_time_zone_adjustment time)).

(** What a directive of the format prints: a name, or a number in a number of digits after a prefix *)
Inductive piece :=
| NAME (name : list Z)
| NUMBER (prefix : list Z) (number number_length : Z).

(** The switch on the character after the dollar sign *)
Definition format_directive (datetime_number c : Z) : option piece :=
  if c =? 89 (* Y *) then
    let? number := ecma_date_year_from_time datetime_number in
    Some (NUMBER [] number (if (100000 <=? number) || (number <=? -100000) then 6 else if (10000 <=? number) || (number <=? -10000) then 5 else 4))
  else if c =? 121 (* y *) then
    let? number := ecma_date_year_from_time datetime_number in
    Some (NUMBER [] number (if (0 <=? number) && (number <=? 9999) then 4 else 6))
  else if c =? 77 (* M *) then
    let? month := ecma_date_month_from_time datetime_number in
    jjs_assert ((0 <=? month) && (month <=? 11)) (Some (NAME (nth (Z.to_nat month) month_names_p [])))
  else if c =? 79 (* O *) then let? month := ecma_date_month_from_time datetime_number in Some (NUMBER [] (month + 1) 2)
  else if c =? 68 (* D *) then let? number := ecma_date_date_from_time datetime_number in Some (NUMBER [] number 2)
  else if c =? 87 (* W *) then
    let? day := ecma_date_week_day datetime_number in
    jjs_assert ((0 <=? day) && (day <=? 6)) (Some (NAME (nth (Z.to_nat day) day_names_p [])))
  else if c =? 104 (* h *) then let? number := ecma_date_hour_from_time datetime_number in Some (NUMBER [] number 2)
  else if c =? 109 (* m *) then let? number := ecma_date_min_from_time datetime_number in Some (NUMBER [] number 2)
  else if c =? 115 (* s *) then let? number := ecma_date_sec_from_time datetime_number in Some (NUMBER [] number 2)
  else if c =? 105 (* i *) then let? number := ecma_date_ms_from_time datetime_number in Some (NUMBER [] number 3)
  else if c =? 122 (* z *) then
    let time_zone := ecma_date_local_time_zone_adjustment datetime_number in
    let sign := if 0 <=? time_zone then LIT_CHAR_PLUS else LIT_CHAR_MINUS in
    let? time_zone := (if 0 <=? time_zone then Some time_zone else int32 (- time_zone)) in
    Some (NUMBER [sign] (Z.quot time_zone ECMA_DATE_MS_PER_HOUR) 2)
  else
    jjs_assert (c =? 90 (* Z *)) (
    let time_zone := ecma_date_local_time_zone_adjustment datetime_number in
    let? time_zone := (if time_zone <? 0 then int32 (- time_zone) else Some time_zone) in
    Some (NUMBER [] (Z.quot (Z.rem time_zone ECMA_DATE_MS_PER_HOUR) ECMA_DATE_MS_PER_MINUTE) 2)).

(** The last [number_length] decimal digits *)
Fixpoint last_digits (number_length : nat) (number : Z) : list Z :=
  match number_length with
  | O => []
  | S number_length => last_digits number_length (Z.quot number 10) ++ [Z.rem number 10 + LIT_CHAR_0]
  end.

Definition print_piece (c : Z) (p : piece) : option (list Z) :=
  match p with
  | NAME name => Some name
  | NUMBER prefix number number_length =>
      let? (sign, number) := (if number <? 0 then let? number := int32 (- number) in Some ([LIT_CHAR_MINUS], number)
                              else Some (if (c =? 121) && (number_length =? 6) then [LIT_CHAR_PLUS] else [], number)) in
      Some (prefix ++ sign ++ last_digits (Z.to_nat number_length) number)
  end.

Fixpoint format_loop (datetime_number : Z) (format : list Z) : option (list Z) :=
  match format with
  | [] => Some []
  | c :: format =>
      if negb (c =? LIT_CHAR_DOLLAR_SIGN) then let? out := format_loop datetime_number format in Some (c :: out)
      else
        match format with
        | [] => None
        | d :: format =>
            let? p := format_directive datetime_number d in
            let? text := print_piece d p in
            let? out := format_loop datetime_number format in
            Some (text ++ out)
        end
  end.

(** The characters from which ecma_new_ecma_string_from_ascii makes the string *)
Definition ecma_date_to_string_format (datetime_number : Z) (format : string) : option (list Z) :=
  let? out := format_loop datetime_number (bytes_of_string format) in
  if zlength out <=? 37 then Some out else None.

Definition ecma_date_value_to_string (datetime_number : Z) : option (list Z) :=
  let datetime_number := number_plus datetime_number (number_of_int (ecma_date_local_time_zone_adjustment datetime_number)) in
  ecma_date_to_string_format datetime_number "$W $M $D $Y $h:$m:$s GMT$z$Z".
Definition ecma_date_value_to_utc_string (datetime_number : Z) : option (list Z) :=
  ecma_date_to_string_format datetime_number "$W, $D $M $Y $h:$m:$s GMT".
Definition ecma_date_value_to_iso_string (datetime_number : Z) : option (list Z) :=
  ecma_date_to_string_format datetime_number "$y-$O-$DT$h:$m:$s.$iZ".
Definition ecma_date_value_to_date_string (datetime_number : Z) : option (list Z) :=
  ecma_date_to_string_format datetime_number "$W $M $D $Y".
Definition ecma_date_value_to_time_string (datetime_number : Z) : option (list Z) :=
  ecma_date_to_string_format datetime_number "$h:$m:$s GMT$z$Z".
End Zone.

(** ** Runs *)

Example demo_date_strings :
  map (fun t => ecma_date_value_to_utc_string (fun _ => None) (number_of_int t)) [-8640000000000000; -62167219200001; -1; 253402300800000; 8640000000000000]
  = map (fun s => Some (bytes_of_string s))
      ["Tue, 20 Apr -271821 00:00:00 GMT"; "Fri, 31 Dec -0001 23:59:59 GMT"; "Wed, 31 Dec 1969 23:59:59 GMT"; "Sat, 01 Jan 10000 00:00:00 GMT"; "Sat, 13 Sep 275760 00:00:00 GMT"]%string.
Proof. vm_compute. reflexivity. Qed.

Example demo_iso : map (fun t => ecma_date_value_to_iso_string (fun _ => None) (number_of_int t)) [1436354945023; -62198755200000; 253402300800000]
  = map (fun s => Some (bytes_of_string s)) ["2015-07-08T11:29:05.023Z"; "-000001-01-01T00:00:00.000Z"; "+010000-01-01T00:00:00.000Z"]%string.
Proof. vm_compute. reflexivity. Qed.

(** ** The Date constructor: src/jjs-core/ecma/builtin-objects/ecma-builtin-date.c

    A pair of pointers into the text is the list of the bytes between them; the
    parsing functions return what they read and the rest of the text.  The
    conversions of arguments run code of the program: an argument is what they
    deliver, and [None] is an exception. *)

(** ** Parts of a date *)

Definition ECMA_DATE_LIMIT (min max : Z) : Z := Z.lor (Z.shiftl min 24) max.
Definition ECMA_DATE_LIMIT_MIN (limit : Z) : Z := Z.shiftr limit 24.
Definition ECMA_DATE_LIMIT_MAX (limit : Z) : Z := Z.land limit (Z.shiftl 1 24 - 1).

(** The loop over the digits *)
Fixpoint parse_digits (num_of_chars : nat) (str : list Z) (num : Z) : option Z * list Z :=
  match num_of_chars, str with
  | O, _ => (Some num, str)
  | S num_of_chars, c :: rest =>
      if negb (lit_char_is_decimal_digit c) then (None, str)
      else parse_digits num_of_chars rest (u32 (num * 10 + (c - LIT_CHAR_0)))
  | S _, [] => (None, str)
  end.

Definition ecma_date_parse_date_chars (str : list Z) (num_of_chars limit : Z) : Z * list Z :=
  if zlength str <? num_of_chars then (number_make_nan, str)
  else
    match parse_digits (Z.to_nat num_of_chars) str 0 with
    | (Some num, rest) =>
        (if (ECMA_DATE_LIMIT_MIN limit <=? num) && (num <=? ECMA_DATE_LIMIT_MAX limit) then number_of_int num else number_make_nan, rest)
    | (None, rest) => (number_make_nan, rest)
    end.

Definition ecma_date_parse_special_char (str : list Z) (expected_char : Z) : bool * list Z :=
  match str with
  | c :: rest => if c =? expected_char then (true, rest) else (false, str)
  | [] => (false, str)
  end.

Definition ecma_date_check_two_chars (str : list Z) (expected_char1 expected_char2 : Z) : bool :=
  match str with c :: _ => (c =? expected_char1) || (c =? expected_char2) | [] => false end.

(** The loop of ecma_date_parse_year: at most six digits; also their number *)
Fixpoint year_digits (limit : nat) (str : list Z) (parsed_year count : Z) : Z * Z * list Z :=
  match limit, str with
  | S limit, c :: rest =>
      if lit_char_is_decimal_digit c then year_digits limit rest (10 * parsed_year + c - LIT_CHAR_0) (count + 1)
      else (parsed_year, count, str)
  | _, _ => (parsed_year, count, str)
  end.

Definition ecma_date_parse_year (str : list Z) : Z * list Z :=
  let '(is_year_sign_negative, str) := ecma_date_parse_special_char str LIT_CHAR_MINUS in
  let '(parsed_year, count, rest) := year_digits 6 str 0 0 in
  if 4 <=? count then (number_of_int (if is_year_sign_negative then - parsed_year else parsed_year), rest) else (number_make_nan, str).

(** The index of the name that the text starts with *)
Fixpoint find_name (names : list (list Z)) (str : list Z) (i : Z) : option Z :=
  match names with
  | [] => None
  | name :: names => if list_eq_dec Z.eq_dec name (firstn 3 str) then Some i else find_name names str (i + 1)
  end.

Definition ecma_date_parse_day_name (str : list Z) : bool * list Z :=
  if 3 <? zlength str then match find_name day_names_p str 0 with Some _ => (true, skipn 3 str) | None => (false, str) end
  else (false, str).

Definition ecma_date_parse_month_name (str : list Z) : Z * list Z :=
  if 3 <? zlength str then match find_name month_names_p str 0 with Some i => (i + 1, skipn 3 str) | None => (0, str) end
  else (0, str).

Section Zone.
Context (local_tza_impl : Z -> option Z).

(** ** ISO strings *)

(** The offset from UTC, a sign and hours:minutes; [None] without a colon *)
Definition parse_offset (str : list Z) : option (Z * list Z) :=
  match str with
  | c :: str =>
      let is_timezone_sign_negative := c =? LIT_CHAR_MINUS in
      let '(hours, str) := ecma_date_parse_date_chars str 2 (ECMA_DATE_LIMIT 0 24) in
      let hours := if number_eq hours (number_of_int 24) then number_of_int 0 else hours in
      let '(has_colon, str) := ecma_date_parse_special_char str 58 in
      if negb has_colon then None
      else
        let '(minutes, str) := ecma_date_parse_date_chars str 2 (ECMA_DATE_LIMIT 0 59) in
        let timezone_offset := ecma_date_make_time hours minutes (number_of_int 0) (number_of_int 0) in
        Some (if is_timezone_sign_negative then timezone_offset else number_opp timezone_offset, str)
  | [] => None
  end.

(** The time of an ISO string: the time of the day, whether it is in UTC, and the
    rest of the text; [None] where the code returns NaN at once *)
Definition parse_iso_time (str : list Z) : option (Z * bool * list Z) :=
  if zlength str <? 5 then None
  else
    let '(hours, str) := ecma_date_parse_date_chars str 2 (ECMA_DATE_LIMIT 0 24) in
    let '(colon, str) := ecma_date_parse_special_char str 58 in
    if negb colon then None
    else
      let '(minutes, str) := ecma_date_parse_date_chars str 2 (ECMA_DATE_LIMIT 0 59) in
      let '(has_seconds, str) := ecma_date_parse_special_char str 58 in
      let '(seconds, milliseconds, str) :=
        (if has_seconds then
           let '(seconds, str) := ecma_date_parse_date_chars str 2 (ECMA_DATE_LIMIT 0 59) in
           let '(has_ms, str) := ecma_date_parse_special_char str 46 in
           if has_ms then let '(milliseconds, str) := ecma_date_parse_date_chars str 3 (ECMA_DATE_LIMIT 0 999) in (seconds, milliseconds, str)
           else (seconds, number_of_int 0, str)
         else (number_of_int 0, number_of_int 0, str)) in
      if number_eq hours (number_of_int 24) && (negb (number_eq minutes (number_of_int 0)) || negb (number_eq seconds (number_of_int 0)) || negb (number_eq milliseconds (number_of_int 0)))
      then None
      else
        let time := ecma_date_make_time hours minutes seconds milliseconds in
        if ecma_number_is_nan time then None
        else
          let '(z, str) := ecma_date_parse_special_char str 90 in
          if z then Some (time, true, str)
          else if (zlength str =? 6) && ecma_date_check_two_chars str LIT_CHAR_MINUS LIT_CHAR_PLUS then
            let? (offset, str) := parse_offset str in Some (number_plus time offset, true, str)
          else Some (time, false, str).

Definition ecma_builtin_date_parse_basic (str : list Z) : option Z :=
  (* 1. read year *)
  let '(is_year_sign_negative, year_digits, year_limit, str) :=
    (if ecma_date_check_two_chars str LIT_CHAR_MINUS LIT_CHAR_PLUS then (hd 0 str =? LIT_CHAR_MINUS, 6, 999999, tl str) else (false, 4, 9999, str)) in
  let '(year, str) := ecma_date_parse_date_chars str year_digits (ECMA_DATE_LIMIT 0 year_limit) in
  let year := if (is_year_sign_negative : bool) then number_opp year else year in
  if ecma_number_is_nan year then Some year
  else
    (* 2. read month if any, 3. read day if any *)
    let '(month, day, str) :=
      (if ecma_date_check_two_chars str LIT_CHAR_MINUS 47 then
         let separator := hd 0 str in
         let '(month, str) := ecma_date_parse_date_chars (tl str) 2 (ECMA_DATE_LIMIT 1 12) in
         let '(has_day, str) := ecma_date_parse_special_char str separator in
         if has_day then let '(day, str) := ecma_date_parse_date_chars str 2 (ECMA_DATE_LIMIT 1 31) in (month, day, str)
         else (month, number_of_int 1, str)
       else (number_of_int 1, number_of_int 1, str)) in
    (* 4. read time if any *)
    let parsed_time := (if ecma_date_check_two_chars str 84 LIT_CHAR_SP then parse_iso_time (tl str) else Some (number_of_int 0, true, str)) in
    match parsed_time with
    | None => Some number_make_nan
    | Some (time, is_utc, str) =>
        match str with
        | _ :: _ => Some number_make_nan
        | [] =>
            let? date := ecma_date_make_day year (number_minus month (number_of_int 1)) day in
            let result_date := ecma_date_make_date date time in
            Some (if (is_utc : bool) then result_date else ecma_date_utc local_tza_impl result_date)
        end
    end.
End Zone.

(** ** The formats of toString and toUTCString *)

(** A character that has to be there *)
Definition expect (str : list Z) (c : Z) : option (list Z) :=
  match ecma_date_parse_special_char str c with (true, str) => Some str | (false, _) => None end.

(** Digits that have to be there *)
Definition expect_digits (str : list Z) (num_of_chars limit : Z) : option (Z * list Z) :=
  let '(num, str) := ecma_date_parse_date_chars str num_of_chars limit in
  if ecma_number_is_nan num then None else Some (num, str).

Definition expect_month (str : list Z) : option (Z * list Z) :=
  let '(month, str) := ecma_date_parse_month_name str in if month =? 0 then None else Some (number_of_int month, str).

(** The text up to " GMT": day, month, year, time, the format and the rest; [None] is NaN *)
Definition parse_until_gmt (str : list Z) : option (Z * Z * Z * Z * bool * list Z) :=
  let? str := (match ecma_date_parse_day_name str with (true, str) => Some str | (false, _) => None end) in
  let '(is_toUTCString_format, str) := ecma_date_parse_special_char str 44 in
  let? str := expect str LIT_CHAR_SP in
  let? (day, month, str) :=
    (if (is_toUTCString_format : bool) then
       let? (day, str) := expect_digits str 2 (ECMA_DATE_LIMIT 0 31) in
       let? str := expect str LIT_CHAR_SP in
       let? (month, str) := expect_month str in
       Some (day, month, str)
     else
       let? (month, str) := expect_month str in
       let? str := expect str LIT_CHAR_SP in
       let? (day, str) := expect_digits str 2 (ECMA_DATE_LIMIT 0 31) in
       Some (day, month, str)) in
  let? str := expect str LIT_CHAR_SP in
  let '(year, str) := ecma_date_parse_year str in
  if ecma_number_is_nan year then None
  else
    let? str := expect str LIT_CHAR_SP in
    let? (hours, str) := expect_digits str 2 (ECMA_DATE_LIMIT 0 24) in
    let? str := expect str 58 in
    let? (minutes, str) := expect_digits str 2 (ECMA_DATE_LIMIT 0 59) in
    let? str := expect str 58 in
    let? (seconds, str) := expect_digits str 2 (ECMA_DATE_LIMIT 0 59) in
    if number_eq hours (number_of_int 24) && (negb (number_eq minutes (number_of_int 0)) || negb (number_eq seconds (number_of_int 0))) then None
    else if (zlength str <? 4) || (if list_eq_dec Z.eq_dec (firstn 4 str) (bytes_of_string " GMT") then false else true) then None
    else Some (day, month, year, ecma_date_make_time hours minutes seconds (number_of_int 0), is_toUTCString_format, skipn 4 str).

(** The offset after " GMT" *)
Definition parse_gmt_offset (str : list Z) : option (Z * list Z) :=
  if negb (ecma_date_check_two_chars str LIT_CHAR_MINUS LIT_CHAR_PLUS) then None
  else
    let is_timezone_sign_negative := hd 0 str =? LIT_CHAR_MINUS in
    let? (hours, str) := expect_digits (tl str) 2 (ECMA_DATE_LIMIT 0 24) in
    let hours := if number_eq hours (number_of_int 24) then number_of_int 0 else hours in
    let? (minutes, str) := expect_digits str 2 (ECMA_DATE_LIMIT 0 59) in
    let timezone_offset := ecma_date_make_time hours minutes (number_of_int 0) (number_of_int 0) in
    Some (if is_timezone_sign_negative then timezone_offset else number_opp timezone_offset, str).

Definition ecma_builtin_date_parse_toString_formats (str : list Z) : option Z :=
  match parse_until_gmt str with
  | None => Some number_make_nan
  | Some (day, month, year, time, is_toUTCString_format, str) =>
      let parsed := (if (is_toUTCString_format : bool) then Some (time, str)
                     else let? (offset, str) := parse_gmt_offset str in Some (number_plus time offset, str)) in
      match parsed with
      | Some (time, []) =>
          let? date := ecma_date_make_day year (number_minus month (number_of_int 1)) day in
          Some (ecma_date_make_date date time)
      | _ => Some number_make_nan
      end
  end.

Definition ecma_builtin_date_parse (local_tza_impl : Z -> option Z) (str : list Z) : option Z :=
  let? tv := ecma_builtin_date_parse_basic local_tza_impl str in
  if ecma_number_is_nan tv then ecma_builtin_date_parse_toString_formats str else Some tv.

(** ** Arguments *)

Inductive primitive_value :=
| STRING (chars : list Z)
| OTHER (to_number : option Z). (** another primitive value, and ecma_op_to_number of it *)

(** What the conversions of an argument deliver *)
Record date_argument := mk_argument {
  date_object : option Z; (** the time value, if the argument is a Date object *)
  to_primitive : option primitive_value; (** ecma_op_to_primitive *)
  to_number : option Z; (** ecma_op_to_number *)
  to_string : option (list Z) (** ecma_op_to_string *)
}.

Inductive date_completion (A : Type) := VALUE (a : A) | ERROR.
Arguments VALUE {A} _.
Arguments ERROR {A}.

(** ecma_date_object_t, without the header *)
Record date_object_t := mk_date { tza_set : bool; tza : Z; date_value : Z }.

(** The arguments in order, until a conversion throws *)
Fixpoint convert_all (args : list (option Z)) : option (list Z) :=
  match args with
  | [] => Some []
  | None :: _ => None
  | Some num :: args => let? nums := convert_all args in Some (num :: nums)
  end.

Definition ecma_date_construct_helper (args : list (option Z)) : option (date_completion Z) :=
  match convert_all (firstn 7 args) with
  | None => Some ERROR
  | Some nums =>
      let date_nums := nums ++ skipn (List.length nums) [number_of_int 0; number_of_int 0; number_of_int 1; number_of_int 0; number_of_int 0; number_of_int 0; number_of_int 0] in
      let num i := nth i date_nums (number_of_int 0) in
      let year :=
        (if negb (ecma_number_is_nan (num 0%nat)) then
           let yi := ecma_number_trunc (num 0%nat) in
           if number_le (number_of_int 0) yi && number_le yi (number_of_int 99) then number_plus (number_of_int 1900) yi else num 0%nat
         else num 0%nat) in
      let? day := ecma_date_make_day year (num 1%nat) (num 2%nat) in
      Some (VALUE (ecma_date_make_date day (ecma_date_make_time (num 3%nat) (num 4%nat) (num 5%nat) (num 6%nat))))
  end.

Definition ecma_builtin_date_utc (args : list (option Z)) : option (date_completion Z) :=
  match args with
  | [] => Some (VALUE number_make_nan)
  | _ =>
      let? tv := ecma_date_construct_helper args in
      Some (match tv with VALUE tv => VALUE (ecma_date_time_clip tv) | ERROR => ERROR end)
  end.

(** Date.parse *)
Definition ecma_builtin_date_parse_routine (local_tza_impl : Z -> option Z) (args : list date_argument) : option (date_completion Z) :=
  match args with
  | [] => Some (VALUE number_make_nan)
  | arg :: _ =>
      match to_string arg with
      | None => Some ERROR
      | Some str => let? tv := ecma_builtin_date_parse local_tza_impl str in Some (VALUE (ecma_date_time_clip tv))
      end
  end.

(** jjs_platform_time_now_ms_impl: the time, or a failure *)
Definition ecma_builtin_date_now_helper (time_now : option Z) : Z :=
  match time_now with Some unix_timestamp_ms => number_floor unix_timestamp_ms | None => number_of_int 0 end.

(** [prototype]: whether ecma_op_get_prototype_from_constructor finds one *)
Definition ecma_builtin_date_create (prototype : bool) (tv : Z) : date_completion date_object_t :=
  if prototype then VALUE (mk_date false 0 tv) else ERROR.

Definition ecma_builtin_date_dispatch_call (local_tza_impl : Z -> option Z) (time_now : option Z) : option (list Z) :=
  ecma_date_value_to_string local_tza_impl (ecma_builtin_date_now_helper time_now).

Definition ecma_builtin_date_dispatch_construct (local_tza_impl : Z -> option Z) (time_now : option Z) (prototype : bool) (args : list date_argument) :
  option (date_completion date_object_t) :=
  match args with
  | [] => Some (ecma_builtin_date_create prototype (ecma_builtin_date_now_helper time_now))
  | [arg] =>
      match date_object arg with
      | Some date_value => Some (ecma_builtin_date_create prototype date_value)
      | None =>
          match to_primitive arg with
          | None | Some (OTHER None) => Some ERROR
          | Some (OTHER (Some tv)) => Some (ecma_builtin_date_create prototype (ecma_date_time_clip tv))
          | Some (STRING str) =>
              let? tv := ecma_builtin_date_parse local_tza_impl str in Some (ecma_builtin_date_create prototype (ecma_date_time_clip tv))
          end
      end
  | _ =>
      let? tv := ecma_date_construct_helper (map to_number args) in
      Some (match tv with
            | VALUE tv => ecma_builtin_date_create prototype (ecma_date_time_clip (ecma_date_utc local_tza_impl tv))
            | ERROR => ERROR
            end)
  end.

Example demo_parse :
  map (fun s => ecma_builtin_date_parse (fun _ => None) (bytes_of_string s))
    ["2015-07-08T11:29:05.023Z"; "-271821-04-20T00:00:00.000Z"; "Thu, 01 Jan 1970 00:00:00 GMT"; "Wed Jul 08 2015 11:29:05 GMT+0130"; "2015-07-08T11:29:05.023+00:30"; "2015"]%string
  = map (fun t => Some (number_of_int t)) [1436354945023; -8640000000000000; 0; 1436349545000; 1436353145023; 1420070400000].
Proof. vm_compute. reflexivity. Qed.

(** ** Methods of dates: src/jjs-core/ecma/builtin-objects/ecma-builtin-date-prototype.c

    The routines of Date.prototype but toJSON and Symbol.toPrimitive, which
    dispatch to other methods, and toUTCString of ecma-builtin-intrinsic.c.  The
    code distinguishes getters, setters, UTC and local routines by the numbers of
    the routines; [routine_id] is the enumeration.  The adjustment of the time
    zone of a date is kept in the object until the date changes. *)

Inductive date_routine :=
| GET_FULL_YEAR | GET_UTC_FULL_YEAR | GET_YEAR | GET_UTC_YEAR | GET_MONTH | GET_UTC_MONTH | GET_DATE | GET_UTC_DATE | GET_DAY | GET_UTC_DAY
| GET_HOURS | GET_UTC_HOURS | GET_MINUTES | GET_UTC_MINUTES | GET_SECONDS | GET_UTC_SECONDS | GET_MILLISECONDS | GET_UTC_MILLISECONDS
| GET_TIMEZONE_OFFSET | GET_UTC_TIMEZONE_OFFSET
| SET_FULL_YEAR | SET_UTC_FULL_YEAR | SET_YEAR | SET_UTC_YEAR | SET_MONTH | SET_UTC_MONTH | SET_DATE | SET_UTC_DATE
| SET_HOURS | SET_UTC_HOURS | SET_MINUTES | SET_UTC_MINUTES | SET_SECONDS | SET_UTC_SECONDS | SET_MILLISECONDS | SET_UTC_MILLISECONDS
| TO_STRING | TO_DATE_STRING | TO_TIME_STRING | TO_ISO_STRING | GET_TIME | SET_TIME.

Definition routine_id (r : date_routine) : Z :=
  match r with
  | GET_FULL_YEAR => 1 | GET_UTC_FULL_YEAR => 2 | GET_YEAR => 3 | GET_UTC_YEAR => 4 | GET_MONTH => 5 | GET_UTC_MONTH => 6
  | GET_DATE => 7 | GET_UTC_DATE => 8 | GET_DAY => 9 | GET_UTC_DAY => 10 | GET_HOURS => 11 | GET_UTC_HOURS => 12
  | GET_MINUTES => 13 | GET_UTC_MINUTES => 14 | GET_SECONDS => 15 | GET_UTC_SECONDS => 16 | GET_MILLISECONDS => 17 | GET_UTC_MILLISECONDS => 18
  | GET_TIMEZONE_OFFSET => 19 | GET_UTC_TIMEZONE_OFFSET => 20
  | SET_FULL_YEAR => 21 | SET_UTC_FULL_YEAR => 22 | SET_YEAR => 23 | SET_UTC_YEAR => 24 | SET_MONTH => 25 | SET_UTC_MONTH => 26
  | SET_DATE => 27 | SET_UTC_DATE => 28 | SET_HOURS => 29 | SET_UTC_HOURS => 30 | SET_MINUTES => 31 | SET_UTC_MINUTES => 32
  | SET_SECONDS => 33 | SET_UTC_SECONDS => 34 | SET_MILLISECONDS => 35 | SET_UTC_MILLISECONDS => 36
  | TO_STRING => 37 | TO_DATE_STRING => 38 | TO_TIME_STRING => 39 | TO_ISO_STRING => 40 | GET_TIME => 41 | SET_TIME => 42
  end.

Definition BUILTIN_DATE_FUNCTION_IS_UTC (r : date_routine) : bool := negb (Z.land (routine_id r - routine_id GET_FULL_YEAR) 1 =? 0).

(** What a routine returns *)
Inductive date_result :=
| A_NUMBER (num : Z)
| A_STRING (chars : list Z) (** a new string of these characters *)
| INVALID_DATE (** the magic string "Invalid Date" *)
| THROWS (** the exception of a conversion *)
| RANGE_ERROR
| TYPE_ERROR.

Section Zone.
Context (local_tza_impl : Z -> option Z).
Notation local_tza := (ecma_date_local_time_zone_adjustment local_tza_impl).

(** ** Getters *)

Definition ecma_builtin_date_prototype_dispatch_get (r : date_routine) (date_value : Z) : option Z :=
  if ecma_number_is_nan date_value then Some number_make_nan
  else
    let? result :=
      match r with
      | GET_FULL_YEAR | GET_UTC_FULL_YEAR => ecma_date_year_from_time date_value
      | GET_YEAR => let? year := ecma_date_year_from_time date_value in int32 (year - 1900)
      | GET_MONTH | GET_UTC_MONTH => ecma_date_month_from_time date_value
      | GET_DATE | GET_UTC_DATE => ecma_date_date_from_time date_value
      | GET_DAY | GET_UTC_DAY => ecma_date_week_day date_value
      | GET_HOURS | GET_UTC_HOURS => ecma_date_hour_from_time date_value
      | GET_MINUTES | GET_UTC_MINUTES => ecma_date_min_from_time date_value
      | GET_SECONDS | GET_UTC_SECONDS => ecma_date_sec_from_time date_value
      | GET_MILLISECONDS | GET_UTC_MILLISECONDS => ecma_date_ms_from_time date_value
      | GET_UTC_TIMEZONE_OFFSET => let? minus := int32 (- local_tza date_value) in Some (Z.quot minus ECMA_DATE_MS_PER_MINUTE)
      | _ => None
      end in
    Some (number_of_int result).

(** ** Setters *)

(** The number of arguments that are converted *)
Definition set_conversions (r : date_routine) : option nat :=
  match r with
  | SET_YEAR | SET_DATE | SET_UTC_DATE | SET_UTC_MILLISECONDS | SET_MILLISECONDS => Some 1%nat
  | SET_MONTH | SET_UTC_MONTH | SET_UTC_SECONDS | SET_SECONDS => Some 2%nat
  | SET_FULL_YEAR | SET_UTC_FULL_YEAR | SET_MINUTES | SET_UTC_MINUTES => Some 3%nat
  | SET_HOURS | SET_UTC_HOURS => Some 4%nat
  | _ => None
  end.

Definition ECMA_DATE_PROTOTYPE_IS_SET_YEAR_ROUTINE (r : date_routine) : bool :=
  match r with SET_FULL_YEAR | SET_UTC_FULL_YEAR | SET_YEAR => true | _ => false end.

(** The adjustment kept in the object, or the platform's *)
Definition date_local_tza (date_object_p : date_object_t) : option Z :=
  if tza_set date_object_p then jjs_assert (tza date_object_p =? local_tza (date_value date_object_p)) (Some (tza date_object_p))
  else Some (local_tza (date_value date_object_p)).

(** converted_number[i], or what the field was when there are not so many *)
Definition converted_or (converted_number : list Z) (i : nat) (field : Z) : Z := nth i converted_number field.

(** The day of the new date, for the routines up to SET_UTC_DATE *)
Definition set_day_part (r : date_routine) (converted_number : list Z) (year month day : Z) : option Z :=
  let first := converted_or converted_number 0 number_make_nan in
  match r with
  | SET_FULL_YEAR | SET_UTC_FULL_YEAR => ecma_date_make_day first (converted_or converted_number 1 month) (converted_or converted_number 2 day)
  | SET_YEAR =>
      let year := ecma_number_trunc first in
      ecma_date_make_day (if number_le (number_of_int 0) year && number_le year (number_of_int 99) then number_plus year (number_of_int 1900) else year) month day
  | SET_MONTH | SET_UTC_MONTH => ecma_date_make_day year first (converted_or converted_number 1 day)
  | SET_DATE | SET_UTC_DATE => ecma_date_make_day year month first
  | _ => None
  end.

(** The time of the new date, for the other routines *)
Definition set_time_part (r : date_routine) (converted_number : list Z) (hour min sec ms : Z) : option Z :=
  let first := converted_or converted_number 0 number_make_nan in
  match r with
  | SET_HOURS | SET_UTC_HOURS =>
      Some (ecma_date_make_time first (converted_or converted_number 1 min) (converted_or converted_number 2 sec) (converted_or converted_number 3 ms))
  | SET_MINUTES | SET_UTC_MINUTES => Some (ecma_date_make_time hour first (converted_or converted_number 1 sec) (converted_or converted_number 2 ms))
  | SET_SECONDS | SET_UTC_SECONDS => Some (ecma_date_make_time hour min first (converted_or converted_number 1 ms))
  | SET_MILLISECONDS | SET_UTC_MILLISECONDS => Some (ecma_date_make_time hour min sec first)
  | _ => None
  end.

(** The end of the function: the new date *)
Definition set_full_date (r : date_routine) (date_object_p : date_object_t) (day_part time_part : Z) : date_result * date_object_t :=
  let full_date := ecma_date_make_date day_part time_part in
  let full_date := if BUILTIN_DATE_FUNCTION_IS_UTC r then full_date else ecma_date_utc local_tza_impl full_date in
  let full_date := ecma_date_time_clip full_date in
  (A_NUMBER full_date, mk_date false (tza date_object_p) full_date).

Definition set_day (r : date_routine) (date_object_p : date_object_t) (converted_number : list Z) (date_value : Z) : option (date_result * date_object_t) :=
  if ecma_number_is_nan date_value && negb (ECMA_DATE_PROTOTYPE_IS_SET_YEAR_ROUTINE r) then Some (A_NUMBER date_value, date_object_p)
  else
    let date_value := if ecma_number_is_nan date_value then number_of_int 0 else date_value in
    let? time_part := ecma_date_time_in_day_from_time date_value in
    let? year := ecma_date_year_from_time date_value in
    let? month := ecma_date_month_from_time date_value in
    let? day := ecma_date_date_from_time date_value in
    let first := converted_or converted_number 0 number_make_nan in
    if match r with SET_YEAR => ecma_number_is_nan first | _ => false end then Some (A_NUMBER first, mk_date false (tza date_object_p) first)
    else
      let? day_part := set_day_part r converted_number (number_of_int year) (number_of_int month) (number_of_int day) in
      Some (set_full_date r date_object_p day_part (number_of_int time_part)).

Definition set_time (r : date_routine) (date_object_p : date_object_t) (converted_number : list Z) (date_value : Z) : option (date_result * date_object_t) :=
  if ecma_number_is_nan date_value then Some (A_NUMBER date_value, date_object_p)
  else
    let? days := ecma_date_day_from_time date_value in
    let? hour := ecma_date_hour_from_time date_value in
    let? min := ecma_date_min_from_time date_value in
    let? sec := ecma_date_sec_from_time date_value in
    let? ms := ecma_date_ms_from_time date_value in
    let? time_part := set_time_part r converted_number (number_of_int hour) (number_of_int min) (number_of_int sec) (number_of_int ms) in
    Some (set_full_date r date_object_p (number_times (number_of_int days) (number_of_int ECMA_DATE_MS_PER_DAY)) time_part).

(** [arguments_list]: what ecma_op_to_number delivers for the arguments; the date
    of the object is read after the conversions *)
Definition ecma_builtin_date_prototype_dispatch_set (r : date_routine) (date_object_p : date_object_t) (arguments_list : list (option Z)) :
  option (date_result * date_object_t) :=
  let? conversions := set_conversions r in
  match convert_all (firstn conversions arguments_list) with
  | None => Some (THROWS, date_object_p)
  | Some converted_number =>
      let? date_value :=
        (if BUILTIN_DATE_FUNCTION_IS_UTC r then Some (date_value date_object_p)
         else let? local_tza := date_local_tza date_object_p in Some (number_plus (date_value date_object_p) (number_of_int local_tza))) in
      if routine_id r <=? routine_id SET_UTC_DATE then set_day r date_object_p converted_number date_value
      else set_time r date_object_p converted_number date_value
  end.

(** ** The dispatcher *)

(** The adjustment is kept in the object *)
Definition get_with_zone (r : date_routine) (date_object_p : date_object_t) : option (date_result * date_object_t) :=
  let? (date_object_p, date_value) :=
    (if BUILTIN_DATE_FUNCTION_IS_UTC r then Some (date_object_p, date_value date_object_p)
     else
       let? local_tza := date_local_tza date_object_p in
       Some (mk_date true local_tza (date_value date_object_p), number_plus (date_value date_object_p) (number_of_int local_tza))) in
  let? num := ecma_builtin_date_prototype_dispatch_get r date_value in
  Some (A_NUMBER num, date_object_p).

Definition string_result (s : option (list Z)) (date_object_p : date_object_t) : option (date_result * date_object_t) :=
  let? chars := s in Some (A_STRING chars, date_object_p).

(** [this_arg] is the Date object, or another value *)
Definition ecma_builtin_date_prototype_dispatch_routine (r : date_routine) (this_arg : option date_object_t) (arguments_list : list (option Z)) :
  option (date_result * option date_object_t) :=
  match this_arg with
  | None => Some (TYPE_ERROR, None)
  | Some date_object_p =>
      let date_value := date_value date_object_p in
      let? (result, date_object_p) :=
        match r with
        | GET_TIME => Some (A_NUMBER date_value, date_object_p)
        | SET_TIME =>
            match hd (Some number_make_nan) arguments_list with
            | None => Some (THROWS, date_object_p)
            | Some time_num => Some (A_NUMBER (ecma_date_time_clip time_num), mk_date false (tza date_object_p) (ecma_date_time_clip time_num))
            end
        | TO_ISO_STRING =>
            if ecma_number_is_nan date_value then Some (RANGE_ERROR, date_object_p)
            else string_result (ecma_date_value_to_iso_string local_tza_impl date_value) date_object_p
        | TO_STRING | TO_DATE_STRING | TO_TIME_STRING =>
            if ecma_number_is_nan date_value then Some (INVALID_DATE, date_object_p)
            else
              match r with
              | TO_STRING => string_result (ecma_date_value_to_string local_tza_impl date_value) date_object_p
              | TO_DATE_STRING => string_result (ecma_date_value_to_date_string local_tza_impl date_value) date_object_p
              | _ => string_result (ecma_date_value_to_time_string local_tza_impl date_value) date_object_p
              end
        | _ =>
            if routine_id r <=? routine_id GET_UTC_TIMEZONE_OFFSET then get_with_zone r date_object_p
            else ecma_builtin_date_prototype_dispatch_set r date_object_p arguments_list
        end in
      Some (result, Some date_object_p)
  end.

(** The branch ECMA_INTRINSIC_DATE_TO_UTC_STRING of ecma-builtin-intrinsic.c *)
Definition date_to_utc_string (this_arg : option date_object_t) : option date_result :=
  match this_arg with
  | None => Some TYPE_ERROR
  | Some date_object_p =>
      if ecma_number_is_nan (date_value date_object_p) then Some INVALID_DATE
      else let? chars := ecma_date_value_to_utc_string local_tza_impl (date_value date_object_p) in Some (A_STRING chars)
  end.
End Zone.
