(* ===== verification/DateTheory.v ===== *)
(** * The calendar, and the fields of a time value

    The proleptic Gregorian calendar, as a reference for the date functions: days
    are counted year by year and month by month from the first of January 1970,
    months from 0.  A civil date has one day number, and every day number is that
    of a civil date.  Then the functions of Dates on integer times: binary64 is
    exact on them, no int32_t overflows, and year, month and date are those of the
    calendar. *)
From Stdlib Require Import ZArith List Lia Bool.
From S2P Require Import Prelude BigIntNumber Binary64 Dates.
Import ListNotations.
#[local] Open Scope Z_scope.
#[local] Open Scope partial_scope.

Definition is_leap (year : Z) : bool := (year mod 4 =? 0) && (negb (year mod 100 =? 0) || (year mod 400 =? 0)).
Definition year_length (year : Z) : Z := if is_leap year then 366 else 365.

(** The days of [n] years from [year] on *)
Fixpoint years_length (n : nat) (year : Z) : Z := match n with O => 0 | S n => year_length year + years_length n (year + 1) end.
Definition days_before_year (year : Z) : Z :=
  if 1970 <=? year then years_length (Z.to_nat (year - 1970)) 1970 else - years_length (Z.to_nat (1970 - year)) year.

Definition month_lengths (year : Z) : list Z := [31; if is_leap year then 29 else 28; 31; 30; 31; 30; 31; 31; 30; 31; 30; 31].
Definition month_length (year month : Z) : Z := nth (Z.to_nat month) (month_lengths year) 0.
Definition days_before_month (year month : Z) : Z := fold_right Z.add 0 (firstn (Z.to_nat month) (month_lengths year)).

(** The number of a day; 0 is the first of January 1970 *)
Definition day_number (year month date : Z) : Z := days_before_year year + days_before_month year month + date - 1.

Definition valid_date (year month date : Z) : Prop := 0 <= month < 12 /\ 1 <= date <= month_length year month.

(** ** Years in closed form *)

Definition year_start (year : Z) : Z := 365 * (year - 1970) + (year - 1969) / 4 - (year - 1901) / 100 + (year - 1601) / 400.

Lemma years_div_step year base step : 0 < step -> (year + 1 - (base * step + 1)) / step = (year - (base * step + 1)) / step + (if year mod step =? 0 then 1 else 0).
Proof.
  intros Hs. replace (year + 1 - (base * step + 1)) with (year + (- base) * step) by ring. replace (year - (base * step + 1)) with (year - 1 + (- base) * step) by ring.
  rewrite !Z.div_add by lia. assert (E : year / step = (year - 1) / step + (if year mod step =? 0 then 1 else 0)); [| lia].
  pose proof (Z.div_mod year step ltac:(lia)). pose proof (Z.mod_pos_bound year step Hs). destruct (Z.eqb_spec (year mod step) 0).
  - assert ((year - 1) / step = year / step - 1) as ->; [| lia]. symmetry. apply Z.div_unique_pos with (r := step - 1); nia.
  - assert ((year - 1) / step = year / step) as ->; [| lia]. symmetry. apply Z.div_unique_pos with (r := year mod step - 1); lia.
Qed.

Lemma year_start_step year : year_start (year + 1) = year_start year + year_length year.
Proof.
  unfold year_start, year_length, is_leap. pose proof (years_div_step year 492 4 ltac:(lia)) as E4. pose proof (years_div_step year 19 100 ltac:(lia)) as E100. pose proof (years_div_step year 4 400 ltac:(lia)) as E400.
  change (492 * 4 + 1) with 1969 in E4. change (19 * 100 + 1) with 1901 in E100. change (4 * 400 + 1) with 1601 in E400. rewrite E4, E100, E400.
  assert (H100 : year mod 100 = 0 -> year mod 4 = 0) by (intros H; rewrite <- (Z.mod_mod_divide year 100 4) by (now exists 25); now rewrite H).
  assert (H400 : year mod 400 = 0 -> year mod 100 = 0) by (intros H; rewrite <- (Z.mod_mod_divide year 400 100) by (now exists 4); now rewrite H).
  destruct (Z.eqb_spec (year mod 4) 0), (Z.eqb_spec (year mod 100) 0), (Z.eqb_spec (year mod 400) 0); cbn [negb andb orb]; tauto || lia.
Qed.

Lemma years_length_spec n year : years_length n year = year_start (year + Z.of_nat n) - year_start year.
Proof.
  revert year. induction n as [| n IH]; intros year; cbn [years_length].
  - replace (year + Z.of_nat 0) with year by lia. lia.
  - rewrite IH, year_start_step. replace (year + 1 + Z.of_nat n) with (year + Z.of_nat (S n)) by lia. lia.
Qed.

Lemma days_before_year_closed year : days_before_year year = year_start year.
Proof.
  unfold days_before_year. assert (E : year_start 1970 = 0) by reflexivity. destruct (Z.leb_spec 1970 year); rewrite years_length_spec, Z2Nat.id by lia.
  - replace (1970 + (year - 1970)) with year by lia. lia.
  - replace (year + (1970 - year)) with 1970 by lia. lia.
Qed.

Lemma days_before_year_step year : days_before_year (year + 1) = days_before_year year + year_length year.
Proof. rewrite !days_before_year_closed. apply year_start_step. Qed.

Lemma year_length_bounds year : 365 <= year_length year <= 366.
Proof. unfold year_length. destruct (is_leap year); lia. Qed.

Lemma days_before_year_le year year' : year <= year' -> days_before_year year + 365 * (year' - year) <= days_before_year year'.
Proof.
  rewrite !days_before_year_closed. revert year'. assert (H : forall n year, year_start year + 365 * Z.of_nat n <= year_start (year + Z.of_nat n)).
  { intros n. induction n as [| n IH]; intros y; [replace (y + Z.of_nat 0) with y by lia; lia |].
    replace (y + Z.of_nat (S n)) with (y + Z.of_nat n + 1) by lia. rewrite year_start_step. pose proof (IH y). pose proof (year_length_bounds (y + Z.of_nat n)). lia. }
  intros year' Hle. pose proof (H (Z.to_nat (year' - year)) year). replace (year + Z.of_nat (Z.to_nat (year' - year))) with year' in * by lia. lia.
Qed.

(** The average year has 365.2425 days *)
Lemma days_before_year_bounds year : 3652425 * (year - 1970) - 12650 <= 10000 * days_before_year year <= 3652425 * (year - 1970) + 14725.
Proof. rewrite days_before_year_closed. unfold year_start. Z.div_mod_to_equations. lia. Qed.

(** ** Months *)

(** Case analysis on a month *)
Lemma month_cases (P : Z -> Prop) : P 0 -> P 1 -> P 2 -> P 3 -> P 4 -> P 5 -> P 6 -> P 7 -> P 8 -> P 9 -> P 10 -> P 11 -> forall m, 0 <= m < 12 -> P m.
Proof.
  intros ? ? ? ? ? ? ? ? ? ? ? ? m Hm.
  destruct (Z.eq_dec m 1) as [-> | ?]; [assumption |]. destruct (Z.eq_dec m 2) as [-> | ?]; [assumption |]. destruct (Z.eq_dec m 3) as [-> | ?]; [assumption |].
  destruct (Z.eq_dec m 4) as [-> | ?]; [assumption |]. destruct (Z.eq_dec m 5) as [-> | ?]; [assumption |]. destruct (Z.eq_dec m 6) as [-> | ?]; [assumption |].
  destruct (Z.eq_dec m 7) as [-> | ?]; [assumption |]. destruct (Z.eq_dec m 8) as [-> | ?]; [assumption |]. destruct (Z.eq_dec m 9) as [-> | ?]; [assumption |].
  destruct (Z.eq_dec m 10) as [-> | ?]; [assumption |]. destruct (Z.eq_dec m 0) as [-> | ?]; [assumption |]. replace m with 11 by lia. assumption.
Qed.

Lemma days_before_month_step year month : 0 <= month < 12 -> days_before_month year (month + 1) = days_before_month year month + month_length year month.
Proof.
  revert month. apply month_cases; unfold days_before_month, month_length, month_lengths; cbn; destruct (is_leap year); reflexivity.
Qed.

Lemma month_length_pos year month : 0 <= month < 12 -> 28 <= month_length year month <= 31.
Proof.
  revert month. apply month_cases; unfold month_length, month_lengths; destruct (is_leap year); vm_compute; split; discriminate.
Qed.

Lemma days_before_month_le year month month' : 0 <= month -> month' <= 12 -> month < month' -> days_before_month year month + month_length year month <= days_before_month year month'.
Proof.
  intros H0 H12. assert (H : forall n, month + 1 + Z.of_nat n <= 12 -> days_before_month year month + month_length year month <= days_before_month year (month + 1 + Z.of_nat n)).
  { intros n. induction n as [| n IH]; intros Hn; [replace (month + 1 + Z.of_nat 0) with (month + 1) by lia; rewrite days_before_month_step; lia |].
    replace (month + 1 + Z.of_nat (S n)) with (month + 1 + Z.of_nat n + 1) by lia. rewrite days_before_month_step by lia.
    pose proof (IH ltac:(lia)). pose proof (month_length_pos year (month + 1 + Z.of_nat n) ltac:(lia)). lia. }
  intros Hlt. pose proof (H (Z.to_nat (month' - month - 1)) ltac:(lia)). now replace (month + 1 + Z.of_nat (Z.to_nat (month' - month - 1))) with month' in * by lia.
Qed.

Lemma days_before_month_ends year : days_before_month year 0 = 0 /\ days_before_month year 12 = year_length year.
Proof. unfold days_before_month, month_lengths, year_length. cbn. destruct (is_leap year); split; reflexivity. Qed.

(** ** Day numbers *)

Lemma valid_date_in_year year month date : valid_date year month date -> days_before_year year <= day_number year month date < days_before_year (year + 1).
Proof.
  intros [Hm Hd]. unfold day_number. rewrite days_before_year_step. destruct (days_before_month_ends year) as [E0 E12].
  pose proof (days_before_month_le year month 12 ltac:(lia) ltac:(lia) ltac:(lia)). assert (0 <= days_before_month year month); [| lia].
  destruct (Z.eq_dec month 0) as [-> | Hne]; [lia |]. pose proof (days_before_month_le year 0 month ltac:(lia) ltac:(lia) ltac:(lia)). pose proof (month_length_pos year 0 ltac:(lia)). lia.
Qed.

(** The year of a day number is unique *)
Lemma year_unique day year year' : days_before_year year <= day < days_before_year (year + 1) -> days_before_year year' <= day < days_before_year (year' + 1) -> year = year'.
Proof.
  intros H H'. destruct (Z.lt_total year year') as [Hlt | [E | Hlt]]; [| exact E |]; exfalso.
  - pose proof (days_before_year_le (year + 1) year' ltac:(lia)). lia.
  - pose proof (days_before_year_le (year' + 1) year ltac:(lia)). lia.
Qed.

(** A civil date is determined by its number *)
Lemma day_number_inj year month date year' month' date' : valid_date year month date -> valid_date year' month' date' ->
  day_number year month date = day_number year' month' date' -> year = year' /\ month = month' /\ date = date'.
Proof.
  intros V V' E. pose proof (valid_date_in_year _ _ _ V) as Y. pose proof (valid_date_in_year _ _ _ V') as Y'. rewrite <- E in Y'.
  assert (year = year') as <- by (now apply (year_unique (day_number year month date))). destruct V as [Hm Hd], V' as [Hm' Hd']. unfold day_number in E.
  assert (month = month') as <-; [| lia]. destruct (Z.lt_total month month') as [Hlt | [Em | Hlt]]; [| exact Em |]; exfalso.
  - pose proof (days_before_month_le year month month' ltac:(lia) ltac:(lia) Hlt). lia.
  - pose proof (days_before_month_le year month' month ltac:(lia) ltac:(lia) Hlt). lia.
Qed.

Example demo_day_numbers : map (fun d => match d with (y, m, d) => day_number y m d end) [(1970, 0, 1); (1969, 11, 31); (2000, 1, 29); (1582, 9, 15)] = [0; -1; 11016; -141427].
Proof. vm_compute. reflexivity. Qed.

(** ** The fields of a time value

    The functions of Dates on integer times: binary64 is exact on them, no int32_t
    overflows, and year, month and date are those of the calendar. *)

(** ** Arithmetic on integers *)

Ltac exact_int := unfold exact_integer, ECMA_DATE_MS_PER_DAY, ECMA_DATE_MS_PER_HOUR, ECMA_DATE_MS_PER_MINUTE, ECMA_DATE_MS_PER_SECOND,
  ECMA_DATE_HOURS_PER_DAY, ECMA_DATE_MINUTES_PER_HOUR, ECMA_DATE_SECONDS_PER_MINUTE in *; lia.

Lemma plus_ints a b : exact_integer a -> exact_integer b -> exact_integer (a + b) -> number_plus (number_of_int a) (number_of_int b) = number_of_int (a + b).
Proof. intros Ha Hb. apply number_plus_of; now apply number_of_spec. Qed.
Lemma minus_ints a b : exact_integer a -> exact_integer b -> exact_integer (a - b) -> number_minus (number_of_int a) (number_of_int b) = number_of_int (a - b).
Proof. intros Ha Hb. apply number_minus_of; now apply number_of_spec. Qed.
(** A factor that is positive keeps a zero positive *)
Lemma times_ints a b : exact_integer a -> exact_integer b -> 0 < b -> number_times (number_of_int a) (number_of_int b) = number_of_int (a * b).
Proof. intros Ha Hb H0. apply number_times_of; [now apply number_of_spec.. |]. destruct (Z.eq_dec a 0) as [-> | Hne]; [right; lia | left; nia]. Qed.
Lemma lt_ints a b : exact_integer a -> exact_integer b -> number_lt (number_of_int a) (number_of_int b) = (a <? b).
Proof. intros Ha Hb. apply number_lt_of; now apply number_of_spec. Qed.
Lemma le_ints a b : exact_integer a -> exact_integer b -> number_le (number_of_int a) (number_of_int b) = (a <=? b).
Proof. intros Ha Hb. apply number_le_of; now apply number_of_spec. Qed.
Lemma eq_ints a b : exact_integer a -> exact_integer b -> number_eq (number_of_int a) (number_of_int b) = (a =? b).
Proof. intros Ha Hb. apply number_eq_of; now apply number_of_spec. Qed.
Lemma nan_int a : exact_integer a -> ecma_number_is_nan (number_of_int a) = false.
Proof. intros Ha. now apply (is_number_finite (number_of_int a) a), number_of_spec. Qed.
Lemma finite_int a : exact_integer a -> ecma_number_is_finite (number_of_int a) = true.
Proof. intros Ha. apply (in_finite _ _ (number_of_spec a Ha)). Qed.
Lemma to_int32_int a : exact_integer a -> number_to_int32 (number_of_int a) = int32 a.
Proof. intros Ha. now apply number_to_int32_of, number_of_spec. Qed.
Lemma floor_int a : exact_integer a -> number_floor (number_of_int a) = number_of_int a.
Proof. intros Ha. now apply number_floor_of, number_of_spec. Qed.
Lemma divide_int32 a d : - 9007199254740992 < a < 9007199254740992 -> 0 < d < 9007199254740992 -> number_to_int32 (number_divide (number_of_int a) (number_of_int d)) = int32 (Z.quot a d).
Proof. intros Ha Hd. apply number_divide_to_int32; [apply number_of_spec; exact_int.. | exact Ha | exact Hd]. Qed.
Lemma divide_floor a d : - 9007199254740992 < a < 9007199254740992 -> 0 < d < 9007199254740992 -> number_floor (number_divide (number_of_int a) (number_of_int d)) = number_of_int (a / d).
Proof. intros Ha Hd. apply number_divide_floor; [apply number_of_spec; exact_int.. | exact Ha | exact Hd]. Qed.

Lemma int32_small z : -2147483648 <= z <= 2147483647 -> int32 z = Some z.
Proof. intros H. unfold int32. now rewrite (proj2 (Z.leb_le _ z)), (proj2 (Z.leb_le z _)) by lia. Qed.

(** ** Days and years *)

(** The times whose fields are read: time values, also adjusted to a time zone *)
Definition near_time (t : Z) : Prop := - 8700000000000000 <= t <= 8700000000000000.

Lemma near_exact t : near_time t -> exact_integer t.
Proof. unfold near_time. exact_int. Qed.

Lemma day_from_time_spec t : near_time t -> ecma_date_day_from_time (number_of_int t) = Some (t / ECMA_DATE_MS_PER_DAY).
Proof.
  intros Ht. unfold ecma_date_day_from_time. rewrite nan_int by (now apply near_exact). cbn [negb jjs_assert]. unfold near_time in Ht. change ECMA_DATE_MS_PER_DAY with 86400000. rewrite lt_ints by exact_int.
  destruct (Z.ltb_spec t 0).
  - rewrite minus_ints by exact_int. rewrite divide_int32 by lia. change (86400000 - 1) with 86399999. assert (E : Z.quot (t - 86399999) 86400000 = t / 86400000).
    { replace (t - 86399999) with (- (86399999 - t)) by lia. rewrite Z.quot_opp_l, Z.quot_div_nonneg by lia. Z.div_mod_to_equations. lia. }
    rewrite E. apply int32_small. Z.div_mod_to_equations. lia.
  - rewrite divide_int32, Z.quot_div_nonneg by lia. apply int32_small. Z.div_mod_to_equations. lia.
Qed.

Definition near_year (y : Z) : Prop := -5000000 <= y <= 5000000.

Lemma day_from_year_spec y : near_year y -> ecma_date_day_from_year y = Some (days_before_year y).
Proof.
  unfold near_year. intros Hy. rewrite days_before_year_closed. unfold ecma_date_day_from_year, year_start. rewrite !(int32_small (y - _)), int32_small by lia.
  destruct (Z.leb_spec 1970 y).
  - rewrite !Z.quot_div_nonneg by lia. rewrite !int32_small by (Z.div_mod_to_equations; lia). reflexivity.
  - unfold floor_years. rewrite !divide_floor by lia. rewrite !plus_ints, minus_ints, plus_ints by (unfold exact_integer; Z.div_mod_to_equations; lia).
    rewrite to_int32_int by (unfold exact_integer; Z.div_mod_to_equations; lia). apply int32_small. Z.div_mod_to_equations. lia.
Qed.

Lemma days_in_year_spec y : ecma_date_days_in_year y = year_length y.
Proof.
  unfold ecma_date_days_in_year, year_length, is_leap. assert (H : forall k, 0 < k -> (Z.rem y k =? 0) = (y mod k =? 0)).
  { intros k Hk. destruct (Z.eqb_spec (Z.rem y k) 0) as [E | E], (Z.eqb_spec (y mod k) 0) as [E' | E']; try reflexivity; exfalso.
    - apply E'. apply Z.mod_divide; [lia |]. apply Z.rem_divide; [lia | exact E].
    - apply E. apply Z.rem_divide; [lia |]. apply Z.mod_divide; [lia | exact E']. }
  rewrite !H by lia. destruct (y mod 4 =? 0), (y mod 100 =? 0), (y mod 400 =? 0); reflexivity.
Qed.

Lemma in_leap_year_spec y : ecma_date_in_leap_year y = if is_leap y then 1 else 0.
Proof. unfold ecma_date_in_leap_year. rewrite days_in_year_spec. unfold year_length. now destruct (is_leap y). Qed.

(** ** The year *)

(** 365.2425 in binary64 *)
Definition average_year : Z := number_round false 3652425 10000.

(** The milliseconds of 365.2425 days *)
Definition average_year_ms : Z := 31556952000.

Lemma den_bound b k : 0 <= k -> - k <= number_exp b -> 0 < number_den b <= 2 ^ k.
Proof. intros H0 Hk. split; [apply number_den_pos |]. unfold number_den. apply Z.pow_le_mono_r; lia. Qed.

(** Two roundings: the quotient, in days and then in years, is off by less than 3 milliseconds *)
Lemma quotient_error t n1 d1 n2 d2 : near_time t -> 0 < d1 -> 0 < d2 ->
  Z.abs (n1 * 86400000 - t * d1) * 2 ^ 53 <= Z.abs t * d1 ->
  Z.abs (n2 * (6425414011327611 * d1) - n1 * 17592186044416 * d2) * 2 ^ 53 <= Z.abs n1 * 17592186044416 * d2 ->
  Z.abs (n2 * 6425414011327611 * 86400000 - t * 17592186044416 * d2) <= 3 * 17592186044416 * d2.
Proof.
  unfold near_time. intros Ht H1 H2 E1 E2. set (cn := 6425414011327611) in *. set (cd := 17592186044416) in *.
  change (2 ^ 53) with 9007199254740992 in *.
  assert (F1 : Z.abs (n1 * 86400000 - t * d1) <= d1) by (assert (Z.abs t * d1 <= 9007199254740992 * d1) by (apply Z.mul_le_mono_nonneg_r; lia); lia).
  assert (G1 : Z.abs n1 <= 104857600 * d1).
  { assert (Z.abs (t * d1) <= 8700000000000000 * d1) by (rewrite Z.abs_mul, (Z.abs_eq d1) by lia; apply Z.mul_le_mono_nonneg_r; lia). lia. }
  assert (F2 : Z.abs (n2 * (cn * d1) - n1 * cd * d2) * 67108864 <= d1 * (cd * d2)).
  { assert (Z.abs n1 * (cd * d2) <= 104857600 * d1 * (cd * d2)) by (apply Z.mul_le_mono_nonneg_r; [unfold cd; lia | exact G1]). change 9007199254740992 with (134217728 * 67108864) in E2. lia. }
  assert (F3 : Z.abs (n2 * cn * 86400000 - t * cd * d2) * d1 <= 3 * cd * d2 * d1); [| apply (Z.mul_le_mono_pos_r _ _ d1 H1); lia].
  rewrite <- (Z.abs_eq d1) at 1 by lia. rewrite <- Z.abs_mul.
  replace ((n2 * cn * 86400000 - t * cd * d2) * d1) with ((n2 * (cn * d1) - n1 * cd * d2) * 86400000 + (n1 * 86400000 - t * d1) * (cd * d2)) by ring.
  eapply Z.le_trans; [apply Z.abs_triangle |]. rewrite !Z.abs_mul, (Z.abs_eq d2) by lia. change (Z.abs 86400000) with 86400000. change (Z.abs cd) with cd.
  assert (Z.abs (n1 * 86400000 - t * d1) * (cd * d2) <= d1 * (cd * d2)) by (apply Z.mul_le_mono_nonneg_r; [unfold cd; lia | exact F1]). lia.
Qed.

Lemma year_quotient t : near_time t -> t <> 0 ->
  exists g, number_floor (number_divide (number_divide (number_of_int t) (number_of_int ECMA_DATE_MS_PER_DAY)) average_year) = number_of_int g /\
    g * average_year_ms <= t + 10 /\ t < (g + 1) * average_year_ms + 10.
Proof.
  intros Ht Ht0. assert (Ht' := Ht). unfold near_time in Ht'.
  destruct (number_divide_int_error (number_of_int t) (number_of_int ECMA_DATE_MS_PER_DAY) t ECMA_DATE_MS_PER_DAY) as (U1 & F1 & _ & N1 & E1 & L1); [apply number_of_spec; exact_int.. | exact Ht0 | exact_int | | reflexivity |].
  { assert (2 ^ 60 <= 2 ^ 1000) by (apply Z.pow_le_mono_r; lia). lia. }
  set (b1 := number_divide (number_of_int t) (number_of_int ECMA_DATE_MS_PER_DAY)) in *. change ECMA_DATE_MS_PER_DAY with 86400000 in *.
  pose proof (Z.log2_nonneg (Z.abs t)). change (Z.log2 86400000) with 26 in L1. destruct (den_bound b1 80 ltac:(lia) ltac:(lia)) as [D1 D1'].
  assert (C1 : number_num average_year = 6425414011327611) by reflexivity. assert (C2 : number_den average_year = 17592186044416) by reflexivity.
  assert (G1 : Z.abs (number_num b1) <= 104857600 * number_den b1) by (unfold near_time in Ht; nia).
  assert (P : 2 ^ 200 <= 2 ^ 1000) by (apply Z.pow_le_mono_r; lia).
  destruct (number_divide_error b1 average_year U1 F1) as (U2 & F2 & S2 & E2 & L2); [split; vm_compute; congruence | reflexivity | rewrite C2; lia | rewrite C1; lia |].
  rewrite C1, C2 in E2. set (b2 := number_divide b1 average_year) in *. pose proof (number_den_pos b2) as D2.
  pose proof (quotient_error t (number_num b1) (number_den b1) (number_num b2) (number_den b2) Ht D1 D2 E1 E2) as E.
  exists (number_num b2 / number_den b2). pose proof (Z.div_mod (number_num b2) (number_den b2) ltac:(lia)) as Hg. pose proof (Z.mod_pos_bound (number_num b2) (number_den b2) D2) as Hr.
  set (g := number_num b2 / number_den b2) in *. set (r := number_num b2 mod number_den b2) in *. split.
  - unfold number_floor, ecma_number_is_finite. rewrite F2. cbn [negb]. fold g. rewrite <- (Z.mul_1_r g) at 1. apply number_round_of; [lia |]. intros Hg0. rewrite S2. apply Z.ltb_ge.
    destruct (Z_lt_ge_dec (number_num b1) 0) as [Hneg | Hpos]; [exfalso | lia]. rewrite Hg0 in Hg.
    assert (0 <= number_num b2 * (6425414011327611 * number_den b1)) by (apply Z.mul_nonneg_nonneg; lia). assert (0 < - number_num b1 * 17592186044416 * number_den b2) by (apply Z.mul_pos_pos; lia).
    rewrite (Z.abs_neq (number_num b1)) in E2 by lia. rewrite Z.abs_eq in E2 by lia. lia.
  - unfold average_year_ms. set (D := number_den b2) in *. set (N := number_num b2) in *. clearbody g r D N. clear - Ht E Hg Hr D2. unfold near_time in Ht. rewrite Hg in E.
    assert (A1 : g * 6425414011327611 * 86400000 * D <= (t + 3) * 17592186044416 * D) by lia. assert (A2 : (t - 3) * 17592186044416 * D < (g + 1) * 6425414011327611 * 86400000 * D) by lia.
    apply (Z.mul_le_mono_pos_r _ _ D D2) in A1. apply (Z.mul_lt_mono_pos_r D _ _ D2) in A2. lia.
Qed.

Lemma div_ms_le d t : d <= t / ECMA_DATE_MS_PER_DAY <-> d * ECMA_DATE_MS_PER_DAY <= t.
Proof. change ECMA_DATE_MS_PER_DAY with 86400000. Z.div_mod_to_equations. lia. Qed.

Lemma year_from_time_spec t : near_time t ->
  exists y, ecma_date_year_from_time (number_of_int t) = Some y /\ days_before_year y <= t / ECMA_DATE_MS_PER_DAY < days_before_year (y + 1) /\ -300000 <= y <= 300000.
Proof.
  intros Ht. destruct (Z.eq_dec t 0) as [-> | Ht0]; [exists 1970; split; [vm_compute; reflexivity |]; rewrite !days_before_year_closed; split; [split; vm_compute; congruence | lia] |].
  destruct (year_quotient t Ht Ht0) as (g & Eg & Hg1 & Hg2). unfold near_time in Ht. unfold average_year_ms in *.
  unfold ecma_date_year_from_time. rewrite nan_int by exact_int. cbn [negb jjs_assert]. fold average_year. rewrite Eg, plus_ints, to_int32_int, int32_small by exact_int.
  set (Y := g + 1970). rewrite day_from_year_spec by (unfold near_year, Y; lia). pose proof (days_before_year_bounds Y) as B0. pose proof (days_before_year_bounds (Y - 1)) as Bm. pose proof (days_before_year_bounds (Y + 1)) as B1. pose proof (days_before_year_bounds (Y + 1 + 1)) as B2.
  pose proof (days_before_year_step Y) as S0. pose proof (days_before_year_step (Y - 1)) as Sm. replace (Y - 1 + 1) with Y in Sm by lia. pose proof (year_length_bounds Y). pose proof (year_length_bounds (Y - 1)).
  assert (HY : -275000 <= Y <= 279000) by (unfold Y; lia). assert (EY : g = Y - 1970) by (unfold Y; lia). clearbody Y. subst g. change ECMA_DATE_MS_PER_DAY with 86400000. rewrite lt_ints by exact_int.
  assert (Hle : forall d, d <= t / 86400000 <-> d * 86400000 <= t) by exact (fun d => div_ms_le d t).
  destruct (Z.ltb_spec t (days_before_year Y * 86400000)) as [Hlt | Hge].
  - rewrite int32_small by lia. rewrite days_in_year_spec, le_ints by exact_int. destruct (Z.leb_spec (days_before_year Y * 86400000 + year_length (Y - 1) * 86400000) t) as [Hbad | _]; [lia |].
    exists (Y - 1). replace (Y - 1 + 1) with Y by lia. pose proof (Hle (days_before_year (Y - 1))). pose proof (Hle (days_before_year Y)). splits; [reflexivity | lia..].
  - rewrite days_in_year_spec, le_ints by exact_int. replace (days_before_year Y * 86400000 + year_length Y * 86400000) with (days_before_year (Y + 1) * 86400000) by lia.
    pose proof (Hle (days_before_year Y)). pose proof (Hle (days_before_year (Y + 1))). pose proof (Hle (days_before_year (Y + 1 + 1))).
    destruct (Z.leb_spec (days_before_year (Y + 1) * 86400000) t); [rewrite int32_small by lia; exists (Y + 1) | exists Y]; splits; try reflexivity; lia.
Qed.

(** ** The month and the date *)

(** Indices that are numerals *)
Ltac eval_indices := repeat match goal with |- context [Z.to_nat ?k] => let n := eval vm_compute in (Z.to_nat k) in change (Z.to_nat k) with n end.

Lemma month_loop_spec y d : 0 <= d < year_length y ->
  let m := month_loop (tl (first_day_in_month (if is_leap y then 1 else 0))) 1 d in
  0 <= m < 12 /\ days_before_month y m <= d < days_before_month y m + month_length y m /\ first_day (if is_leap y then 1 else 0) m = days_before_month y m.
Proof.
  unfold year_length, days_before_month, month_length, month_lengths, first_day. destruct (is_leap y); intros Hd; cbn [Z.eqb first_day_in_month tl month_loop];
  repeat match goal with |- context [d <? ?k] => destruct (Z.ltb_spec d k); [eval_indices; cbn; lia |] end; eval_indices; cbn; lia.
Qed.

(** The day of a time in its year *)
Lemma day_within_year_spec t : near_time t ->
  exists y m d, ecma_date_year_from_time (number_of_int t) = Some y /\ ecma_date_month_from_time (number_of_int t) = Some m /\ ecma_date_date_from_time (number_of_int t) = Some d /\
    valid_date y m d /\ day_number y m d = t / ECMA_DATE_MS_PER_DAY /\ -300000 <= y <= 300000.
Proof.
  intros Ht. destruct (year_from_time_spec t Ht) as (y & Ey & Hy & Hr). set (d := t / ECMA_DATE_MS_PER_DAY - days_before_year y).
  rewrite days_before_year_step in Hy. pose proof (year_length_bounds y).
  assert (Ed : day_within_year (number_of_int t) = Some (if is_leap y then 1 else 0, d)).
  { unfold day_within_year. rewrite Ey, day_from_time_spec, day_from_year_spec by (assumption || (unfold near_year; lia)). fold d. rewrite int32_small by lia.
    change ECMA_DATE_DAYS_IN_LEAP_YEAR with 366. rewrite (proj2 (Z.leb_le 0 d)), (proj2 (Z.ltb_lt d 366)) by lia. cbn [andb jjs_assert]. now rewrite in_leap_year_spec. }
  destruct (month_loop_spec y d ltac:(lia)) as (Hm & Hd & Hf). set (m := month_loop (tl (first_day_in_month (if is_leap y then 1 else 0))) 1 d) in *.
  exists y, m, (d + 1 - days_before_month y m). split; [exact Ey |]. unfold ecma_date_month_from_time, ecma_date_date_from_time. rewrite nan_int by (now apply near_exact). cbn [negb jjs_assert]. rewrite Ed. fold m. rewrite Hf.
  split; [reflexivity |]. split; [reflexivity |]. split; [split; lia |]. split; [unfold day_number; lia | exact Hr].
Qed.

(** ** The time of the day *)

Definition time_in_day (t : Z) : Z := t mod ECMA_DATE_MS_PER_DAY.

Lemma time_in_day_spec t : near_time t -> ecma_date_time_in_day_from_time (number_of_int t) = Some (time_in_day t) /\ 0 <= time_in_day t < ECMA_DATE_MS_PER_DAY.
Proof.
  intros Ht. assert (Hr : 0 <= time_in_day t < ECMA_DATE_MS_PER_DAY) by (apply Z.mod_pos_bound; reflexivity). split; [| exact Hr].
  unfold ecma_date_time_in_day_from_time. rewrite nan_int by (now apply near_exact). cbn [negb jjs_assert]. rewrite day_from_time_spec by exact Ht. unfold near_time, time_in_day in *. change ECMA_DATE_MS_PER_DAY with 86400000 in *.
  pose proof (Z.div_mod t 86400000 ltac:(lia)). rewrite times_ints, minus_ints, to_int32_int by (unfold exact_integer; lia). rewrite int32_small by lia. f_equal. lia.
Qed.

(** Hours, minutes, seconds and milliseconds of the time [s] of a day *)
Definition hour_of (s : Z) : Z := s / 3600000.
Definition minute_of (s : Z) : Z := s / 60000 mod 60.
Definition second_of (s : Z) : Z := s / 1000 mod 60.
Definition ms_of (s : Z) : Z := s mod 1000.

Lemma time_fields s : 0 <= s < ECMA_DATE_MS_PER_DAY ->
  s = 3600000 * hour_of s + 60000 * minute_of s + 1000 * second_of s + ms_of s /\ 0 <= hour_of s < 24 /\ 0 <= minute_of s < 60 /\ 0 <= second_of s < 60 /\ 0 <= ms_of s < 1000.
Proof. unfold hour_of, minute_of, second_of, ms_of. change ECMA_DATE_MS_PER_DAY with 86400000. intros H. Z.div_mod_to_equations. lia. Qed.

Lemma time_fields_spec t : near_time t ->
  ecma_date_hour_from_time (number_of_int t) = Some (hour_of (time_in_day t)) /\ ecma_date_min_from_time (number_of_int t) = Some (minute_of (time_in_day t)) /\
  ecma_date_sec_from_time (number_of_int t) = Some (second_of (time_in_day t)) /\ ecma_date_ms_from_time (number_of_int t) = Some (ms_of (time_in_day t)).
Proof.
  intros Ht. destruct (time_in_day_spec t Ht) as [E Hs]. unfold ecma_date_hour_from_time, ecma_date_min_from_time, ecma_date_sec_from_time, ecma_date_ms_from_time. rewrite E.
  set (s := time_in_day t) in *. change ECMA_DATE_MS_PER_HOUR with 3600000. change ECMA_DATE_MS_PER_MINUTE with 60000. change ECMA_DATE_MS_PER_SECOND with 1000. change ECMA_DATE_MINUTES_PER_HOUR with 60. change ECMA_DATE_SECONDS_PER_MINUTE with 60.
  rewrite !Z.quot_div_nonneg by lia. rewrite !Z.rem_mod_nonneg by (try apply Z.div_pos; lia). splits; reflexivity.
Qed.

Lemma week_day_spec t : near_time t -> ecma_date_week_day (number_of_int t) = Some ((t / ECMA_DATE_MS_PER_DAY + 4) mod 7).
Proof.
  intros Ht. unfold ecma_date_week_day. rewrite nan_int by (now apply near_exact). cbn [negb jjs_assert]. rewrite day_from_time_spec by exact Ht. unfold near_time in Ht. change ECMA_DATE_MS_PER_DAY with 86400000.
  rewrite int32_small by (Z.div_mod_to_equations; lia). set (k := t / 86400000 + 4). f_equal. pose proof (Z.quot_rem' k 7). pose proof (Z.rem_bound_abs k 7 ltac:(lia)).
  destruct (Z.leb_spec 0 (Z.rem k 7)).
  - apply Z.mod_unique_pos with (q := Z.quot k 7); lia.
  - apply Z.mod_unique_pos with (q := Z.quot k 7 - 1); lia.
Qed.

(** ** Making times *)

Lemma trunc_int a : exact_integer a -> ecma_number_trunc (number_of_int a) = number_of_int a.
Proof. intros Ha. apply number_trunc_of; [exact Ha | now apply number_of_spec]. Qed.

(** Fields that are not far out of their ranges *)
Definition small (z : Z) : Prop := -100000000 <= z <= 100000000.

Lemma make_time_spec h m s ms : small h -> small m -> small s -> small ms ->
  ecma_date_make_time (number_of_int h) (number_of_int m) (number_of_int s) (number_of_int ms) = number_of_int (3600000 * h + 60000 * m + 1000 * s + ms).
Proof.
  unfold small. intros Hh Hm Hs Hms. unfold ecma_date_make_time. rewrite !finite_int, !trunc_int by exact_int. cbn [negb orb].
  change ECMA_DATE_MS_PER_HOUR with 3600000. change ECMA_DATE_MS_PER_MINUTE with 60000. change ECMA_DATE_MS_PER_SECOND with 1000.
  rewrite !times_ints, !plus_ints by exact_int. f_equal. lia.
Qed.

(** The day of a month that may lie outside of the year *)
Definition make_day_number (year month date : Z) : Z := day_number (year + month / 12) (month mod 12) 1 + date - 1.

Lemma first_day_spec year month : 0 <= month < 12 -> first_day (if is_leap year then 1 else 0) month = days_before_month year month.
Proof.
  revert month. apply month_cases; unfold first_day, first_day_in_month, days_before_month, month_lengths; destruct (is_leap year); reflexivity.
Qed.

(** The index of the month, from the floating point remainder *)
Lemma month_index_spec month : small month -> exists mn, number_to_int32 (number_fmod (number_of_int month) (number_of_int 12)) = Some mn /\ (if mn <? 0 then mn + 12 else mn) = month mod 12.
Proof.
  unfold small. intros Hm. set (q := month / 12) in *. pose proof (Z.div_mod month 12 ltac:(lia)) as Eq. fold q in Eq. pose proof (Z.mod_pos_bound month 12 ltac:(lia)) as Hr. set (r := month mod 12) in *.
  destruct (Z.eq_dec r 0) as [Er | Er].
  - exists 0. assert (Ef : is_number (number_of_int month) month) by (apply number_of_spec; exact_int). assert (Ef12 : is_number (number_of_int 12) 12) by (apply number_of_spec; exact_int).
    split; [| rewrite Er; reflexivity]. unfold number_fmod. destruct (is_number_finite _ _ Ef) as [-> ->], (is_number_finite _ _ Ef12) as [-> ->]. rewrite (is_number_zero _ _ Ef12). change (12 =? 0) with false. cbn [orb].
    rewrite (in_value _ _ Ef), (in_value _ _ Ef12), (in_sign _ _ Ef). pose proof (number_den_pos (number_of_int month)). pose proof (number_den_pos (number_of_int 12)).
    replace (month * number_den (number_of_int month) * number_den (number_of_int 12)) with (q * (12 * number_den (number_of_int 12) * number_den (number_of_int month))) by lia. rewrite Z.rem_mul by lia.
    unfold number_round. cbn [Z.eqb]. unfold round_quotient. cbn [Z.abs Z.eqb]. destruct (month <? 0); reflexivity.
  - exists (Z.rem month 12). rewrite number_fmod_of with (a := month) (b := 12) by (try apply number_of_spec; unfold exact_integer; fold r; lia). pose proof (Z.rem_bound_abs month 12 ltac:(lia)). pose proof (Z.quot_rem' month 12).
    rewrite to_int32_int, int32_small by exact_int. split; [reflexivity |]. pose proof (Z.rem_sign_mul month 12 ltac:(lia)).
    destruct (Z.ltb_spec (Z.rem month 12) 0); apply Z.mod_unique_pos with (q := if Z.rem month 12 <? 0 then Z.quot month 12 - 1 else Z.quot month 12); destruct (Z.ltb_spec (Z.rem month 12) 0); lia.
Qed.

Lemma make_day_spec year month date : -400000 <= year <= 400000 -> small month -> -10000000 <= date <= 10000000 ->
  -100001000 <= make_day_number year month date <= 100001000 ->
  ecma_date_make_day (number_of_int year) (number_of_int month) (number_of_int date) = Some (number_of_int (make_day_number year month date * ECMA_DATE_MS_PER_DAY)).
Proof.
  unfold small, make_day_number, day_number. intros Hy Hm Hd Hn. unfold ecma_date_make_day. rewrite !finite_int by exact_int. unfold INT32_MAX. rewrite number_fabs_int, lt_ints by exact_int.
  rewrite (proj2 (Z.ltb_ge _ (Z.abs year))) by lia. cbn [negb orb]. rewrite to_int32_int, !trunc_int, divide_floor, to_int32_int by (unfold exact_integer; Z.div_mod_to_equations; lia).
  set (q := month / 12) in *. pose proof (Z.div_mod month 12 ltac:(lia)) as Eq. fold q in Eq. pose proof (Z.mod_pos_bound month 12 ltac:(lia)) as Hr. set (r := month mod 12) in *.
  rewrite (int32_small year), (int32_small q), (int32_small (year + q)) by lia.
  destruct (month_index_spec month Hm) as (mn & Emn & Emn'). fold r in Emn'. rewrite Emn. cbv zeta. rewrite Emn'. destruct (days_before_month_ends (year + q)) as [_ E12]. pose proof (year_length_bounds (year + q)).
  assert (Hbm : 0 <= days_before_month (year + q) r <= 366).
  { pose proof (days_before_month_le (year + q) r 12 ltac:(lia) ltac:(lia) ltac:(lia)). pose proof (month_length_pos (year + q) r Hr). split; [| lia].
    destruct (Z.eq_dec r 0) as [-> | Hne]; [reflexivity |]. pose proof (days_before_month_le (year + q) 0 r ltac:(lia) ltac:(lia) ltac:(lia)). pose proof (month_length_pos (year + q) 0 ltac:(lia)). destruct (days_before_month_ends (year + q)). lia. }
  pose proof (days_before_year_bounds (year + q)) as By. assert (near_year (year + q)) by (unfold near_year; lia).
  rewrite day_from_year_spec, in_leap_year_spec, first_day_spec by assumption. rewrite int32_small by lia. rewrite minus_ints, plus_ints, times_ints by exact_int. do 2 f_equal. ring.
Qed.

Lemma make_date_spec day time : exact_integer day -> exact_integer time -> exact_integer (day + time) -> ecma_date_make_date (number_of_int day) (number_of_int time) = number_of_int (day + time).
Proof. intros Hd Ht Hs. unfold ecma_date_make_date. rewrite !finite_int by assumption. cbn [negb orb]. now apply plus_ints. Qed.

(** The integers that time values are *)
Definition is_time (t : Z) : Prop := -8640000000000000 <= t <= 8640000000000000.

Lemma time_clip_spec t : exact_integer t -> ecma_date_time_clip (number_of_int t) = if (-8640000000000000 <=? t) && (t <=? 8640000000000000) then number_of_int t else number_make_nan.
Proof.
  intros Ht. unfold ecma_date_time_clip, ECMA_DATE_MAX_VALUE. rewrite finite_int, number_fabs_int, lt_ints, trunc_int by (unfold exact_integer in *; lia). cbn [negb orb].
  destruct (Z.ltb_spec 8640000000000000 (Z.abs t)), (Z.leb_spec (-8640000000000000) t), (Z.leb_spec t 8640000000000000); cbn; lia || reflexivity.
Qed.

Lemma make_day_valid year month date : valid_date year month date -> make_day_number year month date = day_number year month date.
Proof. intros [Hm Hd]. unfold make_day_number. rewrite Z.div_small, Z.mod_small, Z.add_0_r by lia. unfold day_number. lia. Qed.
