(* ===== verification/DateSpec.v ===== *)
(** * What dates compute

    Time values against the calendar: reading the fields, making times, getters and
    setters; the texts and what parsing them gives back; what date objects hold;
    and where the code departs from what it means to do. *)
From Stdlib Require Import ZArith List Lia Bool String.
From S2P Require Import Prelude BigIntNumber LitChars MagicTable Binary64 Dates DateTheory.
Import ListNotations.
#[local] Open Scope Z_scope.
#[local] Open Scope partial_scope.

(** ** Fields *)

Record fields := mk_fields { f_year : Z; f_month : Z; f_date : Z; f_hour : Z; f_minute : Z; f_second : Z; f_ms : Z }.

Definition valid_fields (f : fields) : Prop :=
  valid_date (f_year f) (f_month f) (f_date f) /\ 0 <= f_hour f < 24 /\ 0 <= f_minute f < 60 /\ 0 <= f_second f < 60 /\ 0 <= f_ms f < 1000.

(** The time of fields; they may lie outside of their ranges and carry over *)
Definition day_of_fields (f : fields) : Z := make_day_number (f_year f) (f_month f) (f_date f).
Definition ms_of_fields (f : fields) : Z := 3600000 * f_hour f + 60000 * f_minute f + 1000 * f_second f + f_ms f.
Definition time_of (f : fields) : Z := day_of_fields f * ECMA_DATE_MS_PER_DAY + ms_of_fields f.

(** All fields of a time, as the code reads them *)
Definition read_fields (time : Z) : option fields :=
  let? year := ecma_date_year_from_time time in
  let? month := ecma_date_month_from_time time in
  let? date := ecma_date_date_from_time time in
  let? hour := ecma_date_hour_from_time time in
  let? minute := ecma_date_min_from_time time in
  let? second := ecma_date_sec_from_time time in
  let? ms := ecma_date_ms_from_time time in
  Some (mk_fields year month date hour minute second ms).

(** And the time that the code makes of them *)
Definition make_fields (f : fields) : option Z :=
  let? day := ecma_date_make_day (number_of_int (f_year f)) (number_of_int (f_month f)) (number_of_int (f_date f)) in
  Some (ecma_date_make_date day (ecma_date_make_time (number_of_int (f_hour f)) (number_of_int (f_minute f)) (number_of_int (f_second f)) (number_of_int (f_ms f)))).

Lemma valid_time_of f : valid_fields f -> day_of_fields f = day_number (f_year f) (f_month f) (f_date f) /\ 0 <= ms_of_fields f < ECMA_DATE_MS_PER_DAY.
Proof. intros (Hd & H1 & H2 & H3 & H4). split; [now apply make_day_valid |]. unfold ms_of_fields. change ECMA_DATE_MS_PER_DAY with 86400000. lia. Qed.

Lemma valid_fields_day f : valid_fields f -> time_of f / ECMA_DATE_MS_PER_DAY = day_of_fields f /\ time_of f mod ECMA_DATE_MS_PER_DAY = ms_of_fields f.
Proof.
  intros Hf. destruct (valid_time_of f Hf) as [_ Hms]. unfold time_of. split.
  - symmetry. apply Z.div_unique_pos with (r := ms_of_fields f); [exact Hms | ring].
  - symmetry. apply Z.mod_unique_pos with (q := day_of_fields f); [exact Hms | ring].
Qed.

(** Fields in their ranges are determined by their time *)
Lemma fields_unique f f' : valid_fields f -> valid_fields f' -> time_of f = time_of f' -> f = f'.
Proof.
  intros Hf Hf' E. destruct (valid_fields_day f Hf) as [D1 M1], (valid_fields_day f' Hf') as [D2 M2]. rewrite <- E in D2, M2.
  destruct (valid_time_of f Hf) as [N1 _], (valid_time_of f' Hf') as [N2 _]. assert (Ed : day_of_fields f = day_of_fields f') by congruence. rewrite N1, N2 in Ed.
  destruct Hf as (V & ?), Hf' as (V' & ?). destruct (day_number_inj _ _ _ _ _ _ V V' Ed) as (E1 & E2 & E3). assert (Em : ms_of_fields f = ms_of_fields f') by congruence.
  unfold ms_of_fields in Em. destruct f as [y m d h mi s x], f' as [y' m' d' h' mi' s' x']; cbn [f_year f_month f_date f_hour f_minute f_second f_ms] in *.
  assert (h = h') by lia. assert (mi = mi') by lia. assert (s = s') by lia. assert (x = x') by lia. congruence.
Qed.

Lemma read_fields_spec t : near_time t ->
  exists f, read_fields (number_of_int t) = Some f /\ valid_fields f /\ time_of f = t /\ -300000 <= f_year f <= 300000 /\
    ecma_date_year_from_time (number_of_int t) = Some (f_year f) /\ ecma_date_month_from_time (number_of_int t) = Some (f_month f) /\ ecma_date_date_from_time (number_of_int t) = Some (f_date f) /\
    ecma_date_hour_from_time (number_of_int t) = Some (f_hour f) /\ ecma_date_min_from_time (number_of_int t) = Some (f_minute f) /\
    ecma_date_sec_from_time (number_of_int t) = Some (f_second f) /\ ecma_date_ms_from_time (number_of_int t) = Some (f_ms f).
Proof.
  intros Ht. destruct (day_within_year_spec t Ht) as (y & m & d & Ey & Em & Ed & V & N & Hy). destruct (time_fields_spec t Ht) as (Eh & Emi & Es & Ex).
  destruct (time_in_day_spec t Ht) as [_ Hs]. destruct (time_fields _ Hs) as (T & Hh & Hmi & Hse & Hx).
  exists (mk_fields y m d (hour_of (time_in_day t)) (minute_of (time_in_day t)) (second_of (time_in_day t)) (ms_of (time_in_day t))).
  unfold read_fields. rewrite Ey, Em, Ed, Eh, Emi, Es, Ex. cbn [f_year f_month f_date f_hour f_minute f_second f_ms].
  assert (Et : time_of (mk_fields y m d (hour_of (time_in_day t)) (minute_of (time_in_day t)) (second_of (time_in_day t)) (ms_of (time_in_day t))) = t).
  { unfold time_of, day_of_fields, ms_of_fields. cbn [f_year f_month f_date f_hour f_minute f_second f_ms]. rewrite make_day_valid, N by exact V. rewrite <- T. unfold time_in_day. rewrite Z.mod_eq by (vm_compute; congruence). ring. }
  splits; try reflexivity; try lia. now split.
Qed.

(** ** Making times *)

(** Fields that are not so far out of their ranges that the day leaves the range of dates *)
Definition moderate (f : fields) : Prop :=
  -400000 <= f_year f <= 400000 /\ small (f_month f) /\ -10000000 <= f_date f <= 10000000 /\
  small (f_hour f) /\ small (f_minute f) /\ small (f_second f) /\ small (f_ms f) /\ -100001000 <= day_of_fields f <= 100001000.

Lemma make_fields_spec f : moderate f -> make_fields f = Some (number_of_int (time_of f)) /\ exact_integer (time_of f).
Proof.
  intros (Hy & Hm & Hd & Hh & Hmi & Hs & Hx & Hn). unfold make_fields. rewrite make_day_spec, make_time_spec by assumption. unfold small in *. fold (ms_of_fields f). fold (day_of_fields f).
  assert (Hms : -366200000000000 <= ms_of_fields f <= 366200000000000) by (unfold ms_of_fields; lia).
  assert (He : exact_integer (time_of f)) by (unfold time_of; exact_int). split; [| exact He].
  rewrite make_date_spec; [reflexivity | exact_int.. |]. unfold time_of in He. exact He.
Qed.

(** Local times *)
Definition is_local (t : Z) : Prop := -8640086400000000 <= t <= 8640086400000000.

Lemma valid_moderate f : valid_fields f -> is_local (time_of f) -> moderate f.
Proof.
  intros V Ht. destruct (valid_fields_day f V) as [D _]. destruct (valid_time_of f V) as [N _]. destruct V as ((Hm & Hd) & Hh & Hmi & Hs & Hx). unfold is_local in Ht.
  assert (Hday : -100001000 <= day_of_fields f <= 100001000) by (rewrite <- D; change ECMA_DATE_MS_PER_DAY with 86400000; Z.div_mod_to_equations; lia).
  pose proof (valid_date_in_year _ _ _ (conj Hm Hd)) as Hy. rewrite <- N in Hy. pose proof (days_before_year_bounds (f_year f)). pose proof (days_before_year_bounds (f_year f + 1)).
  pose proof (month_length_pos (f_year f) (f_month f) Hm). unfold moderate, small. splits; lia.
Qed.

Lemma time_local t : is_time t -> is_local t.
Proof. unfold is_time, is_local. lia. Qed.

(** The number of a time, or NaN outside of the range of dates *)
Definition time_value (t : Z) : Z := if (-8640000000000000 <=? t) && (t <=? 8640000000000000) then number_of_int t else number_make_nan.

(** The years 0 to 99 stand for those of the 20th century *)
Definition full_year (year : Z) : Z := if (0 <=? year) && (year <=? 99) then 1900 + year else year.
Definition with_full_year (f : fields) : fields := mk_fields (full_year (f_year f)) (f_month f) (f_date f) (f_hour f) (f_minute f) (f_second f) (f_ms f).

Lemma full_year_spec year : small year ->
  (if number_le (number_of_int 0) (number_of_int year) && number_le (number_of_int year) (number_of_int 99) then number_plus (number_of_int 1900) (number_of_int year) else number_of_int year) = number_of_int (full_year year) /\
  (if number_le (number_of_int 0) (number_of_int year) && number_le (number_of_int year) (number_of_int 99) then number_plus (number_of_int year) (number_of_int 1900) else number_of_int year) = number_of_int (full_year year).
Proof.
  unfold small, full_year. intros Hy. rewrite !le_ints by exact_int. destruct (Z.leb_spec 0 year), (Z.leb_spec year 99); cbn [andb]; rewrite ?plus_ints by exact_int; split; f_equal; lia.
Qed.

Lemma moderate_time f : moderate f -> ecma_date_make_day (number_of_int (f_year f)) (number_of_int (f_month f)) (number_of_int (f_date f)) = Some (number_of_int (day_of_fields f * ECMA_DATE_MS_PER_DAY)) /\
  ecma_date_make_time (number_of_int (f_hour f)) (number_of_int (f_minute f)) (number_of_int (f_second f)) (number_of_int (f_ms f)) = number_of_int (ms_of_fields f) /\
  ecma_date_make_date (number_of_int (day_of_fields f * ECMA_DATE_MS_PER_DAY)) (number_of_int (ms_of_fields f)) = number_of_int (time_of f) /\
  -9007000000000000 <= time_of f <= 9007000000000000.
Proof.
  intros (Hy & Hm & Hd & Hh & Hmi & Hs & Hx & Hn). split; [now apply make_day_spec |]. split; [now apply make_time_spec |]. unfold small in *.
  assert (Hms : -366200000000000 <= ms_of_fields f <= 366200000000000) by (unfold ms_of_fields; lia). unfold time_of.
  split; [apply make_date_spec; exact_int | change ECMA_DATE_MS_PER_DAY with 86400000; lia].
Qed.

(** Making times.  Years, months, dates, hours, minutes, seconds and milliseconds,
    also such that lie outside of their ranges and carry over, make their time;
    the fields of a time in their ranges are read back; and Date.UTC is NaN exactly
    outside of the range of dates. *)
Theorem date_make_correct f :
  (moderate f -> make_fields f = Some (number_of_int (time_of f))) /\
  (valid_fields f -> is_time (time_of f) -> (let? time := make_fields f in read_fields time) = Some f) /\
  (small (f_year f) -> moderate (with_full_year f) ->
   ecma_builtin_date_utc (map (fun z => Some (number_of_int z)) [f_year f; f_month f; f_date f; f_hour f; f_minute f; f_second f; f_ms f]) = Some (VALUE (time_value (time_of (with_full_year f))))).
Proof.
  split; [apply make_fields_spec |]. split.
  - intros V Ht. rewrite (proj1 (make_fields_spec f (valid_moderate f V (time_local _ Ht)))). destruct (read_fields_spec (time_of f)) as (f' & E & V' & T & _); [unfold near_time, is_time in *; lia |].
    rewrite E. f_equal. apply fields_unique; assumption.
  - intros Hy Hm. destruct (moderate_time _ Hm) as (E1 & E2 & E3 & E4). unfold ecma_builtin_date_utc. cbn [map]. unfold ecma_date_construct_helper. cbn [firstn convert_all app skipn List.length nth].
    unfold small in Hy. rewrite nan_int, trunc_int by exact_int. cbn [negb]. rewrite (proj1 (full_year_spec (f_year f) Hy)). cbn [with_full_year f_year f_month f_date f_hour f_minute f_second f_ms] in E1, E2.
    rewrite E1, E2, E3, time_clip_spec by exact_int. reflexivity.
Qed.

Lemma date_make_correct_witness : make_fields (mk_fields 2024 14 31 25 0 0 0) = Some (number_of_int 1743469200000) /\
  (let? time := make_fields (mk_fields 2024 1 29 12 30 15 250) in read_fields time) = Some (mk_fields 2024 1 29 12 30 15 250) /\
  ecma_builtin_date_utc (map (fun z => Some (number_of_int z)) [70; 0; 1; 0; 0; 0; 7]) = Some (VALUE (number_of_int 7)).
Proof.
  split; [apply (date_make_correct (mk_fields 2024 14 31 25 0 0 0)); vm_compute; repeat split; discriminate |]. split.
  - apply (date_make_correct (mk_fields 2024 1 29 12 30 15 250)); vm_compute; repeat split; discriminate.
  - apply (date_make_correct (mk_fields 70 0 1 0 0 0 7)); vm_compute; repeat split; discriminate.
Defined.

(** ** Setters *)

#[local] Opaque number_of_int number_plus number_minus ecma_date_make_day ecma_date_make_time ecma_date_make_date.

Lemma nth_firstn_lt {A} (l : list A) n i d : (i < n)%nat -> nth i (firstn n l) d = nth i l d.
Proof. revert n l. induction i as [| i IH]; intros [| n] [| x l] H; cbn; try reflexivity; try lia. apply IH. lia. Qed.

Lemma convert_all_ints n (args : list Z) : convert_all (firstn n (map (fun z => Some (number_of_int z)) args)) = Some (map number_of_int (firstn n args)).
Proof. revert args. induction n as [| n IH]; intros [| z args]; cbn; try reflexivity. now rewrite IH. Qed.

(** An argument, or the field as it was *)
Lemma converted_or_int n args i v : (i < n)%nat -> converted_or (map number_of_int (firstn n args)) i (number_of_int v) = number_of_int (nth i args v).
Proof. intros Hi. unfold converted_or. rewrite map_nth, nth_firstn_lt by exact Hi. reflexivity. Qed.

Lemma converted_first n args v : (0 < n)%nat -> args <> [] -> converted_or (map number_of_int (firstn n args)) 0 number_make_nan = number_of_int (nth 0 args v).
Proof. intros Hn Ha. destruct n as [| n]; [lia |]. destruct args as [| z args]; [congruence |]. reflexivity. Qed.

(** The fields that a setter replaces *)
Definition replace_fields (r : date_routine) (args : list Z) (f : fields) : fields :=
  let arg i v := nth i args v in
  match r with
  | SET_FULL_YEAR | SET_UTC_FULL_YEAR => mk_fields (arg 0%nat (f_year f)) (arg 1%nat (f_month f)) (arg 2%nat (f_date f)) (f_hour f) (f_minute f) (f_second f) (f_ms f)
  | SET_YEAR => mk_fields (full_year (arg 0%nat (f_year f))) (f_month f) (f_date f) (f_hour f) (f_minute f) (f_second f) (f_ms f)
  | SET_MONTH | SET_UTC_MONTH => mk_fields (f_year f) (arg 0%nat (f_month f)) (arg 1%nat (f_date f)) (f_hour f) (f_minute f) (f_second f) (f_ms f)
  | SET_DATE | SET_UTC_DATE => mk_fields (f_year f) (f_month f) (arg 0%nat (f_date f)) (f_hour f) (f_minute f) (f_second f) (f_ms f)
  | SET_HOURS | SET_UTC_HOURS => mk_fields (f_year f) (f_month f) (f_date f) (arg 0%nat (f_hour f)) (arg 1%nat (f_minute f)) (arg 2%nat (f_second f)) (arg 3%nat (f_ms f))
  | SET_MINUTES | SET_UTC_MINUTES => mk_fields (f_year f) (f_month f) (f_date f) (f_hour f) (arg 0%nat (f_minute f)) (arg 1%nat (f_second f)) (arg 2%nat (f_ms f))
  | SET_SECONDS | SET_UTC_SECONDS => mk_fields (f_year f) (f_month f) (f_date f) (f_hour f) (f_minute f) (arg 0%nat (f_second f)) (arg 1%nat (f_ms f))
  | SET_MILLISECONDS | SET_UTC_MILLISECONDS => mk_fields (f_year f) (f_month f) (f_date f) (f_hour f) (f_minute f) (f_second f) (arg 0%nat (f_ms f))
  | _ => f
  end.

Definition sets_day (r : date_routine) : bool :=
  match r with SET_FULL_YEAR | SET_UTC_FULL_YEAR | SET_YEAR | SET_MONTH | SET_UTC_MONTH | SET_DATE | SET_UTC_DATE => true | _ => false end.
Definition sets_time (r : date_routine) : bool :=
  match r with SET_HOURS | SET_UTC_HOURS | SET_MINUTES | SET_UTC_MINUTES | SET_SECONDS | SET_UTC_SECONDS | SET_MILLISECONDS | SET_UTC_MILLISECONDS => true | _ => false end.

Lemma set_day_part_spec r n args f : sets_day r = true -> set_conversions r = Some n -> args <> [] -> (r = SET_YEAR -> small (nth 0 args (f_year f))) ->
  let f' := replace_fields r args f in moderate f' ->
  set_day_part r (map number_of_int (firstn n args)) (number_of_int (f_year f)) (number_of_int (f_month f)) (number_of_int (f_date f)) = Some (number_of_int (day_of_fields f' * ECMA_DATE_MS_PER_DAY)) /\ ms_of_fields f' = ms_of_fields f.
Proof.
  intros Hr Hn Ha Hy f' Hm. destruct (moderate_time f' Hm) as (E & _). split; [rewrite <- E | now destruct r]. destruct args as [| a args]; [congruence |].
  assert (F : forall k v, converted_or (map number_of_int (firstn (S k) (a :: args))) 0 v = number_of_int a) by reflexivity.
  destruct r; try discriminate Hr; injection Hn as <-; unfold set_day_part; rewrite F, ?converted_or_int by lia; subst f'; cbn [replace_fields f_year f_month f_date nth] in E, Hy |- *; try reflexivity.
  specialize (Hy eq_refl). rewrite trunc_int by (unfold small in Hy; exact_int). rewrite (proj2 (full_year_spec _ Hy)). reflexivity.
Qed.

Lemma set_time_part_spec r n args f : sets_time r = true -> set_conversions r = Some n -> args <> [] ->
  let f' := replace_fields r args f in moderate f' ->
  set_time_part r (map number_of_int (firstn n args)) (number_of_int (f_hour f)) (number_of_int (f_minute f)) (number_of_int (f_second f)) (number_of_int (f_ms f)) = Some (number_of_int (ms_of_fields f')) /\ day_of_fields f' = day_of_fields f.
Proof.
  intros Hr Hn Ha f' Hm. destruct (moderate_time f' Hm) as (_ & E & _). split; [rewrite <- E | now destruct r]. destruct args as [| a args]; [congruence |].
  assert (F : forall k v, converted_or (map number_of_int (firstn (S k) (a :: args))) 0 v = number_of_int a) by reflexivity.
  destruct r; try discriminate Hr; injection Hn as <-; unfold set_time_part; rewrite F, ?converted_or_int by lia; subst f'; cbn [replace_fields f_hour f_minute f_second f_ms nth]; reflexivity.
Qed.

Section Zone.
Context (local_tza_impl : Z -> option Z).

(** The adjustment of the zone for a time; a zone is less than a day from UTC *)
Definition zone (t : Z) : Z := ecma_date_local_time_zone_adjustment local_tza_impl (number_of_int t).
Context (zone_bound : forall t, - ECMA_DATE_MS_PER_DAY <= zone t <= ECMA_DATE_MS_PER_DAY).

(** A date object holding the time [t]; the adjustment it keeps is that of its time *)
Definition holds_time (o : date_object_t) (t : Z) : Prop := date_value o = number_of_int t /\ (tza_set o = true -> tza o = zone t).

Lemma date_local_tza_spec o t : holds_time o t -> date_local_tza local_tza_impl o = Some (zone t).
Proof.
  intros [Hv Ht]. unfold date_local_tza. rewrite Hv. fold (zone t). destruct (tza_set o); [| reflexivity]. rewrite (Ht eq_refl), Z.eqb_refl. reflexivity.
Qed.

(** A time as a routine sees it *)
Definition local_time (r : date_routine) (t : Z) : Z := if BUILTIN_DATE_FUNCTION_IS_UTC r then t else t + zone t.

Lemma local_near r t : is_time t -> near_time (local_time r t).
Proof.
  intros Ht. unfold local_time, near_time, is_time in *. pose proof (zone_bound t). change ECMA_DATE_MS_PER_DAY with 86400000 in *. destruct (BUILTIN_DATE_FUNCTION_IS_UTC r); lia.
Qed.

Lemma set_full_date_spec r o f : moderate f ->
  set_full_date local_tza_impl r o (number_of_int (day_of_fields f * ECMA_DATE_MS_PER_DAY)) (number_of_int (ms_of_fields f)) =
  let v := time_value (time_of f - if BUILTIN_DATE_FUNCTION_IS_UTC r then 0 else zone (time_of f)) in (A_NUMBER v, mk_date false (tza o) v).
Proof.
  intros Hm. destruct (moderate_time f Hm) as (_ & _ & E & B). unfold set_full_date. rewrite E. pose proof (zone_bound (time_of f)) as Hz. change ECMA_DATE_MS_PER_DAY with 86400000 in Hz.
  destruct (BUILTIN_DATE_FUNCTION_IS_UTC r).
  - rewrite Z.sub_0_r, time_clip_spec by exact_int. reflexivity.
  - unfold ecma_date_utc. fold (zone (time_of f)). rewrite minus_ints, time_clip_spec by exact_int. reflexivity.
Qed.

Lemma set_day_spec r n o args f t : sets_day r = true -> set_conversions r = Some n -> args <> [] -> near_time t -> valid_fields f -> time_of f = t -> moderate (replace_fields r args f) -> (r = SET_YEAR -> small (nth 0 args (f_year f))) ->
  set_day local_tza_impl r o (map number_of_int (firstn n args)) (number_of_int t) =
  Some (set_full_date local_tza_impl r o (number_of_int (day_of_fields (replace_fields r args f) * ECMA_DATE_MS_PER_DAY)) (number_of_int (ms_of_fields (replace_fields r args f)))).
Proof.
  intros Hr Hn Ha Ht V T Hm Hs. destruct (read_fields_spec t Ht) as (f' & _ & V' & T' & _ & Ey & Em & Ed & _). assert (f' = f) as -> by (apply fields_unique; congruence).
  destruct (set_day_part_spec r n args f Hr Hn Ha Hs Hm) as [P M]. destruct (valid_fields_day f V) as [_ Hms]. unfold set_day. rewrite nan_int by (now apply near_exact). cbn [andb].
  destruct (time_in_day_spec t Ht) as [-> _]. rewrite Ey, Em, Ed, P. replace (time_in_day t) with (ms_of_fields (replace_fields r args f)) by (unfold time_in_day; congruence).
  assert (N : match r with SET_YEAR => ecma_number_is_nan (converted_or (map number_of_int (firstn n args)) 0 number_make_nan) | _ => false end = false); [| now rewrite N].
  destruct r; try reflexivity. injection Hn as <-. rewrite (converted_first 1 args (f_year f)) by (lia || assumption). specialize (Hs eq_refl). apply nan_int. unfold small in Hs. exact_int.
Qed.

Lemma set_time_spec r n o args f t : sets_time r = true -> set_conversions r = Some n -> args <> [] -> near_time t -> valid_fields f -> time_of f = t -> moderate (replace_fields r args f) ->
  set_time local_tza_impl r o (map number_of_int (firstn n args)) (number_of_int t) =
  Some (set_full_date local_tza_impl r o (number_of_int (day_of_fields (replace_fields r args f) * ECMA_DATE_MS_PER_DAY)) (number_of_int (ms_of_fields (replace_fields r args f)))).
Proof.
  intros Hr Hn Ha Ht V T Hm. destruct (read_fields_spec t Ht) as (f' & _ & V' & T' & _ & _ & _ & _ & Eh & Emi & Es & Ex). assert (f' = f) as -> by (apply fields_unique; congruence).
  destruct (set_time_part_spec r n args f Hr Hn Ha Hm) as [P D]. destruct (valid_fields_day f V) as [Hd _]. unfold set_time. rewrite nan_int by (now apply near_exact).
  rewrite day_from_time_spec, Eh, Emi, Es, Ex, P by exact Ht. rewrite <- T, Hd, <- D. rewrite times_ints; [reflexivity | | exact_int | reflexivity].
  destruct Hm as (_ & _ & _ & _ & _ & _ & _ & Hn'). exact_int.
Qed.

Lemma setter_kinds r n : set_conversions r = Some n -> (sets_day r = true /\ (routine_id r <=? routine_id SET_UTC_DATE) = true) \/ (sets_time r = true /\ (routine_id r <=? routine_id SET_UTC_DATE) = false).
Proof. destruct r; intros H; try discriminate H; auto. Qed.

Lemma setter_dispatch r n o args : set_conversions r = Some n ->
  ecma_builtin_date_prototype_dispatch_routine local_tza_impl r (Some o) args =
  let? (result, o) := ecma_builtin_date_prototype_dispatch_set local_tza_impl r o args in Some (result, Some o).
Proof. destruct r; intros H; try discriminate H; reflexivity. Qed.

Lemma local_date_value r o t : is_time t -> holds_time o t ->
  (if BUILTIN_DATE_FUNCTION_IS_UTC r then Some (date_value o) else let? local_tza := date_local_tza local_tza_impl o in Some (number_plus (date_value o) (number_of_int local_tza))) = Some (number_of_int (local_time r t)).
Proof.
  intros Ht Ho. rewrite (date_local_tza_spec o t Ho). destruct Ho as [-> _]. unfold local_time. pose proof (zone_bound t) as Hz. unfold is_time in Ht.
  destruct (BUILTIN_DATE_FUNCTION_IS_UTC r); [reflexivity |]. rewrite plus_ints by exact_int. reflexivity.
Qed.

Lemma setter_spec r n o args t f : set_conversions r = Some n -> args <> [] -> is_time t -> holds_time o t ->
  valid_fields f -> time_of f = local_time r t -> moderate (replace_fields r args f) -> (r = SET_YEAR -> small (nth 0 args (f_year f))) ->
  ecma_builtin_date_prototype_dispatch_routine local_tza_impl r (Some o) (map (fun z => Some (number_of_int z)) args) =
  let v := time_value (time_of (replace_fields r args f) - if BUILTIN_DATE_FUNCTION_IS_UTC r then 0 else zone (time_of (replace_fields r args f))) in
  Some (A_NUMBER v, Some (mk_date false (tza o) v)).
Proof.
  intros Hn Ha Ht Ho V T Hm Hs. rewrite (setter_dispatch r n) by exact Hn. unfold ecma_builtin_date_prototype_dispatch_set. rewrite Hn, convert_all_ints, (local_date_value r o t Ht Ho).
  pose proof (local_near r t Ht) as Hl. destruct (setter_kinds r n Hn) as [[Hk ->] | [Hk ->]].
  - rewrite (set_day_spec r n o args f) by assumption. rewrite set_full_date_spec by exact Hm. reflexivity.
  - rewrite (set_time_spec r n o args f) by assumption. rewrite set_full_date_spec by exact Hm. reflexivity.
Qed.
End Zone.

(** C14: Setters.  For every routine that sets fields, in UTC or in local time, in any zone at
    most a day from UTC, called with integers on an object that holds a time, such that the
    fields to be set are moderate (years within 400000, dates within 10^7, the other fields
    within 10^8, and the day of the three that make it within 100001000 of 1970): the fields
    of the time, in UTC or in local time, are replaced by the arguments, a missing argument leaves its field, fields out of their ranges carry over, setYear takes 0
    to 99 as years of the 20th century; the time of the new fields, taken back to UTC by the
    adjustment of the zone, or NaN when it is outside of the range of dates, is the result and
    the new value of the object, and the adjustment kept is dropped.  Far beyond these bounds
    the code overflows ([date_faults]). *)
Theorem date_setters_correct (local_tza_impl : Z -> option Z) r n o args t f :
  (forall t, - ECMA_DATE_MS_PER_DAY <= zone local_tza_impl t <= ECMA_DATE_MS_PER_DAY) ->
  set_conversions r = Some n -> args <> [] -> is_time t -> holds_time local_tza_impl o t ->
  valid_fields f -> time_of f = local_time local_tza_impl r t -> moderate (replace_fields r args f) -> (r = SET_YEAR -> small (nth 0 args (f_year f))) ->
  let v := time_value (time_of (replace_fields r args f) - if BUILTIN_DATE_FUNCTION_IS_UTC r then 0 else zone local_tza_impl (time_of (replace_fields r args f))) in
  ecma_builtin_date_prototype_dispatch_routine local_tza_impl r (Some o) (map (fun z => Some (number_of_int z)) args) = Some (A_NUMBER v, Some (mk_date false (tza o) v)).
Proof. intros Hz Hn Ha Ht Ho V T Hm Hs. now apply (setter_spec local_tza_impl Hz r n o args t f). Qed.

(** Two hours east; the third of March 2023 becomes the 31st of February 2024 *)
Lemma date_setters_correct_witness : exists v,
  ecma_builtin_date_prototype_dispatch_routine (fun _ => Some 7200000) SET_FULL_YEAR (Some (mk_date false 0 (number_of_int 1677801600000))) [Some (number_of_int 2024); Some (number_of_int 1); Some (number_of_int 31)] =
    Some (A_NUMBER v, Some (mk_date false 0 v)) /\ v = number_of_int 1709337600000.
Proof.
  exists (number_of_int 1709337600000). split; [| reflexivity].
  apply (date_setters_correct (fun _ => Some 7200000) SET_FULL_YEAR 3 (mk_date false 0 (number_of_int 1677801600000)) [2024; 1; 31] 1677801600000 (mk_fields 2023 2 3 2 0 0 0)); try (vm_compute; repeat split; discriminate).
Defined.

(** ** Getters *)

(** What a getter delivers for fields, and for the adjustment of the time in UTC *)
Definition get_field (r : date_routine) (f : fields) (zone : Z) : option Z :=
  match r with
  | GET_FULL_YEAR | GET_UTC_FULL_YEAR => Some (f_year f)
  | GET_YEAR => Some (f_year f - 1900)
  | GET_MONTH | GET_UTC_MONTH => Some (f_month f)
  | GET_DATE | GET_UTC_DATE => Some (f_date f)
  | GET_DAY | GET_UTC_DAY => Some ((day_of_fields f + 4) mod 7)
  | GET_HOURS | GET_UTC_HOURS => Some (f_hour f)
  | GET_MINUTES | GET_UTC_MINUTES => Some (f_minute f)
  | GET_SECONDS | GET_UTC_SECONDS => Some (f_second f)
  | GET_MILLISECONDS | GET_UTC_MILLISECONDS => Some (f_ms f)
  | GET_UTC_TIMEZONE_OFFSET => Some (Z.quot (- zone) 60000)
  | _ => None
  end.

Lemma dispatch_get_spec local_tza_impl r t f v : near_time t -> - ECMA_DATE_MS_PER_DAY <= zone local_tza_impl t <= ECMA_DATE_MS_PER_DAY ->
  valid_fields f -> time_of f = t -> get_field r f (zone local_tza_impl t) = Some v ->
  ecma_builtin_date_prototype_dispatch_get local_tza_impl r (number_of_int t) = Some (number_of_int v).
Proof.
  intros Ht Hz V T Hv. destruct (read_fields_spec t Ht) as (f' & _ & V' & T' & R & Ey & Em & Ed & Eh & Emi & Es & Ex). assert (f' = f) as -> by (apply fields_unique; congruence).
  unfold ecma_builtin_date_prototype_dispatch_get. rewrite nan_int by (now apply near_exact). change ECMA_DATE_MS_PER_DAY with 86400000 in Hz.
  destruct r; try discriminate Hv; injection Hv as <-; rewrite ?Ey, ?Em, ?Ed, ?Eh, ?Emi, ?Es, ?Ex, ?week_day_spec by exact Ht; try reflexivity.
  - now rewrite int32_small by lia.
  - now rewrite <- T, (proj1 (valid_fields_day f V)).
  - now rewrite <- T, (proj1 (valid_fields_day f V)).
  - fold (zone local_tza_impl t). now rewrite int32_small by lia.
Qed.

Lemma getter_dispatch local_tza_impl r f z v o args : get_field r f z = Some v ->
  ecma_builtin_date_prototype_dispatch_routine local_tza_impl r (Some o) args = let? (result, o) := get_with_zone local_tza_impl r o in Some (result, Some o).
Proof. destruct r; intros H; try discriminate H; reflexivity. Qed.

(** The fields of a time *)
Lemma fields_of_time t : near_time t -> exists f, valid_fields f /\ time_of f = t.
Proof. intros Ht. destruct (read_fields_spec t Ht) as (f & _ & V & T & _). now exists f. Qed.

Lemma getter_spec (local_tza_impl : Z -> option Z) (zone_bound : forall t, - ECMA_DATE_MS_PER_DAY <= zone local_tza_impl t <= ECMA_DATE_MS_PER_DAY) o t args :
  is_time t -> holds_time local_tza_impl o t -> forall r f, valid_fields f -> time_of f = local_time local_tza_impl r t ->
  forall v, get_field r f (zone local_tza_impl t) = Some v ->
  ecma_builtin_date_prototype_dispatch_routine local_tza_impl r (Some o) args =
  Some (A_NUMBER (number_of_int v), Some (if BUILTIN_DATE_FUNCTION_IS_UTC r then o else mk_date true (zone local_tza_impl t) (number_of_int t))).
Proof.
  intros Ht Ho r f V T v Hv. pose proof (local_near local_tza_impl zone_bound r t Ht) as Hl. rewrite (getter_dispatch local_tza_impl r f (zone local_tza_impl t) v) by exact Hv. unfold get_with_zone.
  pose proof (local_date_value local_tza_impl zone_bound r o t Ht Ho) as E.
  assert (Hu : BUILTIN_DATE_FUNCTION_IS_UTC r = false -> get_field r f (zone local_tza_impl (local_time local_tza_impl r t)) = Some v) by (destruct r; try discriminate Hv; intros Hu; try discriminate Hu; exact Hv).
  destruct (BUILTIN_DATE_FUNCTION_IS_UTC r) eqn:Hr.
  - injection E as E. rewrite E. assert (El : local_time local_tza_impl r t = t) by (unfold local_time; now rewrite Hr). rewrite El in *. now rewrite (dispatch_get_spec local_tza_impl r t f v).
  - rewrite (date_local_tza_spec local_tza_impl o t Ho) in *. injection E as E. rewrite E. rewrite (dispatch_get_spec local_tza_impl r _ f v Hl (zone_bound _) V T (Hu eq_refl)). now rewrite (proj1 Ho).
Qed.

(** C13: Getters.  For every object that holds a time, in a zone less than a day from
    UTC: there are fields, each in its range, that have the time, or for the local
    routines the local time, and only one; every getter delivers its field of
    these, the day of the week counted from Thursday the first of January 1970,
    getYear the year from 1900 on, and getTimezoneOffset the minutes from local time
    to UTC.  The local getters keep the adjustment in the object, the others leave
    the object alone. *)
Theorem date_getters_correct (local_tza_impl : Z -> option Z) o t args :
  (forall t, - ECMA_DATE_MS_PER_DAY <= zone local_tza_impl t <= ECMA_DATE_MS_PER_DAY) -> is_time t -> holds_time local_tza_impl o t ->
  forall r, exists f, (valid_fields f /\ time_of f = local_time local_tza_impl r t) /\
    (forall f', valid_fields f' -> time_of f' = local_time local_tza_impl r t -> f' = f) /\
    forall v, get_field r f (zone local_tza_impl t) = Some v ->
      ecma_builtin_date_prototype_dispatch_routine local_tza_impl r (Some o) args =
      Some (A_NUMBER (number_of_int v), Some (if BUILTIN_DATE_FUNCTION_IS_UTC r then o else mk_date true (zone local_tza_impl t) (number_of_int t))).
Proof.
  intros Hz Ht Ho r. destruct (fields_of_time _ (local_near local_tza_impl Hz r t Ht)) as (f & V & T). exists f. splits; try assumption.
  - intros f' V' T'. apply fields_unique; congruence.
  - intros v Hv. now apply (getter_spec local_tza_impl Hz o t args Ht Ho r f).
Qed.

(** Five and a half hours east, a millisecond before the epoch *)
Lemma date_getters_correct_witness : exists f, time_of f = 19799999 /\
  forall v, get_field GET_HOURS f 19800000 = Some v ->
    ecma_builtin_date_prototype_dispatch_routine (fun _ => Some 19800000) GET_HOURS (Some (mk_date false 0 (number_of_int (-1)))) [] = Some (A_NUMBER (number_of_int v), Some (mk_date true 19800000 (number_of_int (-1)))).
Proof.
  destruct (date_getters_correct (fun _ => Some 19800000) (mk_date false 0 (number_of_int (-1))) (-1) []) with (r := GET_HOURS) as (f & [V T] & U & H);
    [intros t; vm_compute; split; discriminate | unfold is_time; lia | split; [reflexivity | discriminate] |].
  exists f. split; [exact T | exact H].
Defined.

(** ** The texts of dates

    What the formats print, and that parsing it gives the time back. *)

(** ** What is printed *)

(** The digits of a year, and the text of a directive for fields and a zone *)
Definition year_width (year : Z) : nat := if 100000 <=? Z.abs year then 6%nat else if 10000 <=? Z.abs year then 5%nat else 4%nat.

Definition directive_text (f : fields) (zone c : Z) : list Z :=
  if c =? 89 (* Y *) then (if f_year f <? 0 then [LIT_CHAR_MINUS] else []) ++ last_digits (year_width (f_year f)) (Z.abs (f_year f))
  else if c =? 121 (* y *) then
    if (0 <=? f_year f) && (f_year f <=? 9999) then last_digits 4 (f_year f)
    else (if f_year f <? 0 then LIT_CHAR_MINUS else LIT_CHAR_PLUS) :: last_digits 6 (Z.abs (f_year f))
  else if c =? 77 (* M *) then nth (Z.to_nat (f_month f)) month_names_p []
  else if c =? 79 (* O *) then last_digits 2 (f_month f + 1)
  else if c =? 68 (* D *) then last_digits 2 (f_date f)
  else if c =? 87 (* W *) then nth (Z.to_nat ((day_of_fields f + 4) mod 7)) day_names_p []
  else if c =? 104 (* h *) then last_digits 2 (f_hour f)
  else if c =? 109 (* m *) then last_digits 2 (f_minute f)
  else if c =? 115 (* s *) then last_digits 2 (f_second f)
  else if c =? 105 (* i *) then last_digits 3 (f_ms f)
  else if c =? 122 (* z *) then (if 0 <=? zone then LIT_CHAR_PLUS else LIT_CHAR_MINUS) :: last_digits 2 (Z.abs zone / 3600000)
  else last_digits 2 (Z.abs zone mod 3600000 / 60000).

Definition is_directive (c : Z) : bool := existsb (Z.eqb c) [89; 121; 77; 79; 68; 87; 104; 109; 115; 105; 122; 90].

(** A format whose dollar signs are followed by directives, and its text *)
Fixpoint format_text (f : fields) (zone : Z) (format : list Z) : option (list Z) :=
  match format with
  | [] => Some []
  | c :: format =>
      if negb (c =? LIT_CHAR_DOLLAR_SIGN) then let? out := format_text f zone format in Some (c :: out)
      else
        match format with
        | [] => None
        | d :: format => if is_directive d then let? out := format_text f zone format in Some (directive_text f zone d ++ out) else None
        end
  end.

(** Reading a text two characters at a time *)
Lemma list_two_ind (P : list Z -> Prop) : P [] -> (forall c, P [c]) -> (forall c d l, P l -> P (d :: l) -> P (c :: d :: l)) -> forall l, P l.
Proof.
  intros H0 H1 H2 l. enough (H : P l /\ forall c, P (c :: l)) by apply H. induction l as [| d l [IH IH']]; [now split |]. split; [apply IH' |]. intros c. apply H2; [exact IH | apply IH'].
Qed.

Lemma print_number c prefix v n : 0 <= v -> print_piece c (NUMBER prefix v n) = Some (prefix ++ (if (c =? 121) && (n =? 6) then [LIT_CHAR_PLUS] else []) ++ last_digits (Z.to_nat n) v).
Proof. intros Hv. cbn [print_piece]. now rewrite (proj2 (Z.ltb_ge v 0)) by exact Hv. Qed.

Lemma print_negative c prefix v n : -2147483647 <= v < 0 -> print_piece c (NUMBER prefix v n) = Some (prefix ++ [LIT_CHAR_MINUS] ++ last_digits (Z.to_nat n) (- v)).
Proof. intros Hv. cbn [print_piece]. rewrite (proj2 (Z.ltb_lt v 0)), int32_small by lia. reflexivity. Qed.

Section Print.
Context (local_tza_impl : Z -> option Z) (t : Z) (f : fields).
Context (Ht : near_time t) (V : valid_fields f) (T : time_of f = t).
Notation zone_of_t := (zone local_tza_impl t).
Context (Hz : - ECMA_DATE_MS_PER_DAY <= zone_of_t <= ECMA_DATE_MS_PER_DAY).

Lemma year_in_range : -300000 <= f_year f <= 300000.
Proof. destruct (read_fields_spec t Ht) as (f' & _ & V' & T' & R & _). assert (f' = f) as -> by (apply fields_unique; congruence). exact R. Qed.

Lemma directive_spec d : is_directive d = true -> (let? p := format_directive local_tza_impl (number_of_int t) d in print_piece d p) = Some (directive_text f zone_of_t d).
Proof.
  destruct (read_fields_spec t Ht) as (f' & _ & V' & T' & R & Ey & Em & Ed & Eh & Emi & Es & Ex). assert (f' = f) as -> by (apply fields_unique; congruence).
  assert (Hw : (t / ECMA_DATE_MS_PER_DAY + 4) mod 7 = (day_of_fields f + 4) mod 7) by (rewrite <- T; now rewrite (proj1 (valid_fields_day f V))).
  destruct V as ((Hm & Hd) & Hh & Hmi & Hs & Hx). pose proof (month_length_pos (f_year f) (f_month f) Hm).
  unfold is_directive. cbn [existsb]. rewrite !orb_true_iff, !Z.eqb_eq. intros Hdir. unfold format_directive, directive_text. fold (zone local_tza_impl t). change ECMA_DATE_MS_PER_DAY with 86400000 in *.
  destruct Hdir as [-> | Hdir].
  { cbn [Z.eqb Pos.eqb]. rewrite Ey. unfold year_width. destruct (Z.leb_spec 100000 (f_year f)), (Z.leb_spec (f_year f) (-100000)), (Z.leb_spec 10000 (f_year f)), (Z.leb_spec (f_year f) (-10000)),
    (Z.leb_spec 100000 (Z.abs (f_year f))), (Z.leb_spec 10000 (Z.abs (f_year f))); try lia; cbn [orb]; destruct (Z.ltb_spec (f_year f) 0); try lia;
    rewrite ?print_number, ?print_negative by lia; rewrite ?Z.abs_eq, ?Z.abs_neq by lia; reflexivity. }
  destruct Hdir as [-> | Hdir].
  { cbn [Z.eqb Pos.eqb]. rewrite Ey. destruct (Z.leb_spec 0 (f_year f)), (Z.leb_spec (f_year f) 9999); cbn [andb]; destruct (Z.ltb_spec (f_year f) 0); try lia;
    rewrite ?print_number, ?print_negative by lia; rewrite ?Z.abs_eq, ?Z.abs_neq by lia; reflexivity. }
  destruct Hdir as [-> | Hdir]; [cbn [Z.eqb Pos.eqb]; rewrite Em; rewrite (proj2 (Z.leb_le 0 _)), (proj2 (Z.leb_le _ 11)) by lia; reflexivity |].
  destruct Hdir as [-> | Hdir]; [cbn [Z.eqb Pos.eqb]; rewrite Em, print_number by lia; reflexivity |].
  destruct Hdir as [-> | Hdir]; [cbn [Z.eqb Pos.eqb]; rewrite Ed, print_number by lia; reflexivity |].
  destruct Hdir as [-> | Hdir].
  { cbn [Z.eqb Pos.eqb]. rewrite week_day_spec by exact Ht. change ECMA_DATE_MS_PER_DAY with 86400000. rewrite Hw. pose proof (Z.mod_pos_bound (day_of_fields f + 4) 7 ltac:(lia)).
    rewrite (proj2 (Z.leb_le 0 _)), (proj2 (Z.leb_le _ 6)) by lia. reflexivity. }
  destruct Hdir as [-> | Hdir]; [cbn [Z.eqb Pos.eqb]; rewrite Eh, print_number by lia; reflexivity |].
  destruct Hdir as [-> | Hdir]; [cbn [Z.eqb Pos.eqb]; rewrite Emi, print_number by lia; reflexivity |].
  destruct Hdir as [-> | Hdir]; [cbn [Z.eqb Pos.eqb]; rewrite Es, print_number by lia; reflexivity |].
  destruct Hdir as [-> | Hdir]; [cbn [Z.eqb Pos.eqb]; rewrite Ex, print_number by lia; reflexivity |].
  cbn zeta. change ECMA_DATE_MS_PER_HOUR with 3600000. change ECMA_DATE_MS_PER_MINUTE with 60000. fold (zone local_tza_impl t). set (z := zone local_tza_impl t) in *. clearbody z.
  assert (Ha : (if 0 <=? z then Some z else int32 (- z)) = Some (Z.abs z)) by (destruct (Z.leb_spec 0 z); [f_equal; lia | rewrite int32_small by lia; f_equal; lia]).
  assert (Ha' : (if z <? 0 then int32 (- z) else Some z) = Some (Z.abs z)) by (destruct (Z.ltb_spec z 0); [rewrite int32_small by lia |]; f_equal; lia).
  destruct Hdir as [-> | [-> | Hdir]]; [| | discriminate Hdir]; cbn [Z.eqb Pos.eqb]; rewrite ?Ha, ?Ha'; unfold jjs_assert; rewrite print_number;
    rewrite ?Z.quot_div_nonneg, ?Z.rem_mod_nonneg by (try apply Z.rem_nonneg; lia); try reflexivity; apply Z.div_pos; try lia; apply Z.mod_pos_bound; lia.
Qed.

Lemma format_text_step z c d format : format_text f z (c :: d :: format) =
  if negb (c =? LIT_CHAR_DOLLAR_SIGN) then let? out := format_text f z (d :: format) in Some (c :: out)
  else if is_directive d then let? out := format_text f z format in Some (directive_text f z d ++ out) else None.
Proof. reflexivity. Qed.

Lemma format_loop_step c d format : format_loop local_tza_impl (number_of_int t) (c :: d :: format) =
  if negb (c =? LIT_CHAR_DOLLAR_SIGN) then let? out := format_loop local_tza_impl (number_of_int t) (d :: format) in Some (c :: out)
  else
    let? p := format_directive local_tza_impl (number_of_int t) d in
    let? text := print_piece d p in
    let? out := format_loop local_tza_impl (number_of_int t) format in
    Some (text ++ out).
Proof. reflexivity. Qed.

Lemma format_loop_spec format text : format_text f zone_of_t format = Some text -> format_loop local_tza_impl (number_of_int t) format = Some text.
Proof.
  revert text. induction format as [| c | c d format IH IH'] using list_two_ind; intros text; [exact (fun H => H) | cbn; destruct (negb _); [exact (fun H => H) | discriminate] |].
  rewrite format_text_step, format_loop_step. destruct (negb (c =? LIT_CHAR_DOLLAR_SIGN)).
  - destruct (format_text f zone_of_t (d :: format)) as [out |]; [| discriminate]. now rewrite (IH' out eq_refl).
  - destruct (is_directive d) eqn:Hd; [| discriminate]. destruct (format_text f zone_of_t format) as [out |]; [| discriminate]. rewrite (IH out eq_refl).
    pose proof (directive_spec d Hd) as E. destruct (format_directive local_tza_impl (number_of_int t) d); [| discriminate E]. now rewrite E.
Qed.
End Print.

(** ** Lengths *)

Lemma last_digits_length n v : List.length (last_digits n v) = n.
Proof. revert v. induction n as [| n IH]; intros v; cbn [last_digits]; [reflexivity |]. rewrite length_app, IH. cbn. lia. Qed.

Lemma day_name_length k : 0 <= k < 7 -> List.length (nth (Z.to_nat k) day_names_p []) = 3%nat.
Proof.
  intros Hk. assert (H : Forall (fun name => List.length name = 3%nat) day_names_p) by (repeat constructor). rewrite Forall_forall in H. apply H, nth_In. change (List.length day_names_p) with 7%nat. lia.
Qed.

Lemma month_name_length m : 0 <= m < 12 -> List.length (nth (Z.to_nat m) month_names_p []) = 3%nat.
Proof.
  intros Hm. assert (H : Forall (fun name => List.length name = 3%nat) month_names_p) by (repeat constructor). rewrite Forall_forall in H. apply H, nth_In. change (List.length month_names_p) with 12%nat. lia.
Qed.

(** ** Reading digits back *)

Lemma last_digits_bytes n v : 0 <= v -> Forall (fun c => lit_char_is_decimal_digit c = true) (last_digits n v).
Proof.
  revert v. induction n as [| n IH]; intros v Hv; cbn [last_digits]; [constructor |]. apply Forall_app. split; [apply IH; rewrite Z.quot_div_nonneg by lia; apply Z.div_pos; lia |].
  constructor; [| constructor]. pose proof (Z.rem_bound_pos v 10 Hv ltac:(lia)). unfold lit_char_is_decimal_digit, LIT_CHAR_0, LIT_CHAR_9. lia.
Qed.

Lemma parse_digits_last n k v acc rest : 0 <= v < 10 ^ Z.of_nat n -> 0 <= acc -> acc * 10 ^ Z.of_nat n + v < 4294967296 ->
  parse_digits (n + k) (last_digits n v ++ rest) acc = parse_digits k rest (acc * 10 ^ Z.of_nat n + v).
Proof.
  revert k v rest. induction n as [| n IH]; intros k v rest Hv Ha Hb; [cbn [last_digits app plus]; f_equal; change (10 ^ Z.of_nat 0) with 1 in *; lia |].
  rewrite Nat2Z.inj_succ, Z.pow_succ_r in * by lia. cbn [last_digits]. rewrite <- app_assoc. cbn [app]. set (p := 10 ^ Z.of_nat n) in *.
  rewrite Z.quot_div_nonneg, Z.rem_mod_nonneg by lia. pose proof (Z.div_mod v 10 ltac:(lia)). pose proof (Z.mod_pos_bound v 10 ltac:(lia)).
  replace (S n + k)%nat with (n + S k)%nat by lia. rewrite IH by (fold p; try split; try apply Z.div_pos; lia). fold p. cbn [parse_digits].
  assert (Hd : lit_char_is_decimal_digit (v mod 10 + LIT_CHAR_0) = true) by (unfold lit_char_is_decimal_digit, LIT_CHAR_0, LIT_CHAR_9; lia). rewrite Hd. cbn [negb].
  f_equal. unfold u32. rewrite Z.mod_small by (unfold LIT_CHAR_0; lia). unfold LIT_CHAR_0. lia.
Qed.

(** Digits within limits *)
Lemma date_chars_last n v rest limit : (n <= 6)%nat -> 0 <= v < 10 ^ Z.of_nat n -> ECMA_DATE_LIMIT_MIN limit <= v <= ECMA_DATE_LIMIT_MAX limit ->
  ecma_date_parse_date_chars (last_digits n v ++ rest) (Z.of_nat n) limit = (number_of_int v, rest).
Proof.
  intros Hn Hv Hl. unfold ecma_date_parse_date_chars. assert (Hlen : (zlength (last_digits n v ++ rest) <? Z.of_nat n) = false) by (apply Z.ltb_ge; unfold zlength; rewrite length_app, last_digits_length; lia).
  rewrite Hlen, Nat2Z.id. replace (parse_digits n) with (parse_digits (n + 0)) by (f_equal; lia).
  assert (10 ^ Z.of_nat n <= 10 ^ 6) by (apply Z.pow_le_mono_r; lia). change (10 ^ 6) with 1000000 in *. rewrite parse_digits_last by lia. cbn [parse_digits].
  change (0 * 10 ^ Z.of_nat n + v) with v. rewrite (proj2 (Z.leb_le _ v)), (proj2 (Z.leb_le v _)) by lia. reflexivity.
Qed.

(** The first digit *)
Lemma last_digits_head n v rest : 0 <= v -> exists c rest', last_digits (S n) v ++ rest = c :: rest' /\ lit_char_is_decimal_digit c = true.
Proof.
  intros Hv. pose proof (last_digits_bytes (S n) v Hv) as F. pose proof (last_digits_length (S n) v) as L. destruct (last_digits (S n) v) as [| c l]; [discriminate L |].
  exists c, (l ++ rest). split; [reflexivity |]. now inversion F.
Qed.

Lemma digit_no_sign c : lit_char_is_decimal_digit c = true -> (c =? LIT_CHAR_MINUS) = false /\ (c =? LIT_CHAR_PLUS) = false /\ (c =? LIT_CHAR_SP) = false /\ (c =? 44) = false.
Proof. unfold lit_char_is_decimal_digit, LIT_CHAR_0, LIT_CHAR_9, LIT_CHAR_MINUS, LIT_CHAR_PLUS, LIT_CHAR_SP. lia. Qed.

(** ** ISO strings *)

Definition two (v : Z) : list Z := last_digits 2 v.

Lemma two_chars min max v rest limit : ECMA_DATE_LIMIT_MIN limit = min -> ECMA_DATE_LIMIT_MAX limit = max -> 0 <= v < 100 -> min <= v <= max ->
  ecma_date_parse_date_chars (two v ++ rest) 2 limit = (number_of_int v, rest).
Proof. intros Hmin Hmax Hv Hl. apply (date_chars_last 2); [lia | exact Hv | lia]. Qed.

Definition iso_time_text (f : fields) : list Z := two (f_hour f) ++ 58 :: two (f_minute f) ++ 58 :: two (f_second f) ++ 46 :: last_digits 3 (f_ms f) ++ [90].

Lemma parse_iso_time_spec f : valid_fields f -> parse_iso_time (iso_time_text f) = Some (number_of_int (ms_of_fields f), true, []).
Proof.
  intros (_ & Hh & Hmi & Hs & Hx). unfold parse_iso_time, iso_time_text.
  assert (Hlen : zlength (two (f_hour f) ++ 58 :: two (f_minute f) ++ 58 :: two (f_second f) ++ 46 :: last_digits 3 (f_ms f) ++ [90]) <? 5 = false).
  { apply Z.ltb_ge. unfold zlength, two. rewrite !length_app. cbn [List.length]. rewrite !length_app. cbn [List.length]. rewrite !length_app, !last_digits_length. cbn. lia. }
  rewrite Hlen, (two_chars 0 24) by (reflexivity || lia). cbn [ecma_date_parse_special_char Z.eqb Pos.eqb negb]. rewrite (two_chars 0 59) by (reflexivity || lia).
  cbn [ecma_date_parse_special_char Z.eqb Pos.eqb]. rewrite (two_chars 0 59) by (reflexivity || lia). cbn [ecma_date_parse_special_char Z.eqb Pos.eqb].
  change 3 with (Z.of_nat 3). rewrite (date_chars_last 3) by (try lia; change (ECMA_DATE_LIMIT_MIN (ECMA_DATE_LIMIT 0 999)) with 0; change (ECMA_DATE_LIMIT_MAX (ECMA_DATE_LIMIT 0 999)) with 999; lia).
  rewrite !eq_ints by exact_int. rewrite (proj2 (Z.eqb_neq (f_hour f) 24)) by lia. cbn [andb]. rewrite make_time_spec by (unfold small; lia). fold (ms_of_fields f).
  rewrite nan_int by (unfold ms_of_fields; exact_int). reflexivity.
Qed.

Lemma opp_int k : exact_integer k -> k <> 0 -> number_opp (number_of_int k) = number_of_int (- k).
Proof.
  intros Hk H0. apply (number_of_unique _ _ (- k)); [| apply number_of_spec; exact_int]. destruct (number_of_spec k Hk) as [Hb Hs Hf Hv].
  destruct (number_opp_fields _ Hb Hf) as (O1 & O2 & O3 & O4 & O5). split; [exact O1 | | exact O3 | rewrite O4, O5, Hv; ring].
  rewrite O2, Hs. destruct (Z.ltb_spec k 0), (Z.ltb_spec (- k) 0); cbn; lia || reflexivity.
Qed.

Definition iso_date_text (f : fields) (rest : list Z) : list Z := 45 :: two (f_month f + 1) ++ 45 :: two (f_date f) ++ rest.

(** The parts of parse_basic that follow the year *)
Definition parse_month_day (str : list Z) : Z * Z * list Z :=
  if ecma_date_check_two_chars str LIT_CHAR_MINUS 47 then
    let separator := hd 0 str in
    let '(month, str) := ecma_date_parse_date_chars (tl str) 2 (ECMA_DATE_LIMIT 1 12) in
    let '(has_day, str) := ecma_date_parse_special_char str separator in
    if has_day then let '(day, str) := ecma_date_parse_date_chars str 2 (ECMA_DATE_LIMIT 1 31) in (month, day, str)
    else (month, number_of_int 1, str)
  else (number_of_int 1, number_of_int 1, str).

Lemma parse_month_day_spec f rest : valid_fields f -> parse_month_day (iso_date_text f rest) = (number_of_int (f_month f + 1), number_of_int (f_date f), rest).
Proof.
  intros ((Hm & Hd) & _). pose proof (month_length_pos (f_year f) (f_month f) Hm). unfold parse_month_day, iso_date_text. cbn [ecma_date_check_two_chars hd tl]. change (45 =? LIT_CHAR_MINUS) with true. cbn [orb].
  rewrite (two_chars 1 12) by (reflexivity || lia). cbn [ecma_date_parse_special_char]. rewrite Z.eqb_refl, (two_chars 1 31) by (reflexivity || lia). reflexivity.
Qed.

Definition iso_year_text (year : Z) : list Z :=
  if (0 <=? year) && (year <=? 9999) then last_digits 4 year else (if year <? 0 then LIT_CHAR_MINUS else LIT_CHAR_PLUS) :: last_digits 6 (Z.abs year).

(** And the year *)
Definition parse_iso_year (str : list Z) : Z * list Z :=
  let '(is_year_sign_negative, year_digits, year_limit, str) :=
    (if ecma_date_check_two_chars str LIT_CHAR_MINUS LIT_CHAR_PLUS then (hd 0 str =? LIT_CHAR_MINUS, 6, 999999, tl str) else (false, 4, 9999, str)) in
  let '(year, str) := ecma_date_parse_date_chars str year_digits (ECMA_DATE_LIMIT 0 year_limit) in
  (if (is_year_sign_negative : bool) then number_opp year else year, str).

Lemma parse_iso_year_spec year rest : -300000 <= year <= 300000 -> parse_iso_year (iso_year_text year ++ rest) = (number_of_int year, rest).
Proof.
  intros Hy. unfold parse_iso_year, iso_year_text. change 6 with (Z.of_nat 6). change (false, 4) with (false, Z.of_nat 4).
  assert (L6 : ECMA_DATE_LIMIT_MIN (ECMA_DATE_LIMIT 0 999999) = 0 /\ ECMA_DATE_LIMIT_MAX (ECMA_DATE_LIMIT 0 999999) = 999999) by (split; reflexivity).
  assert (L4 : ECMA_DATE_LIMIT_MIN (ECMA_DATE_LIMIT 0 9999) = 0 /\ ECMA_DATE_LIMIT_MAX (ECMA_DATE_LIMIT 0 9999) = 9999) by (split; reflexivity).
  destruct (Z.leb_spec 0 year); [destruct (Z.leb_spec year 9999) |]; cbn [andb].
  - destruct (last_digits_head 3 year rest ltac:(lia)) as (c & r & E & Hc). destruct (digit_no_sign c Hc) as (N1 & N2 & _).
    assert (Hcheck : ecma_date_check_two_chars (last_digits 4 year ++ rest) LIT_CHAR_MINUS LIT_CHAR_PLUS = false) by (rewrite E; cbn; now rewrite N1, N2).
    rewrite Hcheck, date_chars_last by (try lia; cbn; lia). reflexivity.
  - rewrite (proj2 (Z.ltb_ge year 0)) by lia. cbn [app ecma_date_check_two_chars hd tl]. change (LIT_CHAR_PLUS =? LIT_CHAR_MINUS) with false. rewrite Z.eqb_refl. cbn [orb].
    rewrite date_chars_last by (try lia; cbn; lia). now rewrite Z.abs_eq by lia.
  - rewrite (proj2 (Z.ltb_lt year 0)) by lia. cbn [app ecma_date_check_two_chars hd tl]. rewrite Z.eqb_refl. cbn [orb].
    rewrite date_chars_last by (try lia; cbn; lia). rewrite opp_int by (exact_int || lia). do 2 f_equal. lia.
Qed.

Lemma parse_basic_parts local_tza_impl str : ecma_builtin_date_parse_basic local_tza_impl str =
  let '(year, str) := parse_iso_year str in
  if ecma_number_is_nan year then Some year
  else
    let '(month, day, str) := parse_month_day str in
    match (if ecma_date_check_two_chars str 84 LIT_CHAR_SP then parse_iso_time (tl str) else Some (number_of_int 0, true, str)) with
    | None => Some number_make_nan
    | Some (time, is_utc, str) =>
        match str with
        | _ :: _ => Some number_make_nan
        | [] =>
            let? date := ecma_date_make_day year (number_minus month (number_of_int 1)) day in
            let result_date := ecma_date_make_date date time in
            Some (if (is_utc : bool) then result_date else ecma_date_utc local_tza_impl result_date)
        end
    end.
Proof.
  unfold ecma_builtin_date_parse_basic, parse_iso_year. destruct (if ecma_date_check_two_chars str LIT_CHAR_MINUS LIT_CHAR_PLUS then _ else _) as [[[neg digits] limit] str'].
  destruct (ecma_date_parse_date_chars str' digits (ECMA_DATE_LIMIT 0 limit)). reflexivity.
Qed.

Definition iso_text (f : fields) : list Z := iso_year_text (f_year f) ++ iso_date_text f (84 :: iso_time_text f).

Lemma parse_iso_text local_tza_impl f : valid_fields f -> is_time (time_of f) -> ecma_builtin_date_parse_basic local_tza_impl (iso_text f) = Some (number_of_int (time_of f)).
Proof.
  intros V Ht. destruct (moderate_time f (valid_moderate f V (time_local _ Ht))) as (E1 & _ & E3 & _). assert (Hn : near_time (time_of f)) by (unfold near_time, is_time in *; lia).
  pose proof (year_in_range (time_of f) f Hn V eq_refl) as Hy. rewrite parse_basic_parts. unfold iso_text. rewrite parse_iso_year_spec by exact Hy. rewrite nan_int by exact_int.
  rewrite parse_month_day_spec by exact V. cbn [ecma_date_check_two_chars Z.eqb Pos.eqb orb tl]. rewrite parse_iso_time_spec by exact V.
  assert (Hm : 0 <= f_month f < 12) by apply V. rewrite minus_ints by exact_int. replace (f_month f + 1 - 1) with (f_month f) by lia. rewrite E1. cbn zeta. now rewrite E3.
Qed.

Lemma iso_text_length f : zlength (iso_text f) <= 37.
Proof.
  unfold iso_text, iso_year_text, iso_date_text, iso_time_text, two, zlength. destruct ((0 <=? f_year f) && (f_year f <=? 9999));
    repeat first [rewrite length_app | rewrite last_digits_length | progress cbn [List.length]]; lia.
Qed.

(** A format without a zone *)
Fixpoint zoneless (format : list Z) : bool :=
  match format with
  | [] => true
  | c :: format =>
      if negb (c =? LIT_CHAR_DOLLAR_SIGN) then zoneless format
      else match format with [] => true | d :: format => negb (d =? 122) && negb (d =? 90) && zoneless format end
  end.

Lemma directive_zone local_tza_impl local_tza_impl' x d : negb (d =? 122) && negb (d =? 90) = true -> format_directive local_tza_impl x d = format_directive local_tza_impl' x d.
Proof. intros H. apply andb_true_iff in H as [H1 H2]. apply negb_true_iff in H1, H2. unfold format_directive. now rewrite H1, H2. Qed.

Lemma zoneless_step c d format : zoneless (c :: d :: format) = if negb (c =? LIT_CHAR_DOLLAR_SIGN) then zoneless (d :: format) else negb (d =? 122) && negb (d =? 90) && zoneless format.
Proof. reflexivity. Qed.

Lemma format_zone local_tza_impl local_tza_impl' t format : zoneless format = true -> format_loop local_tza_impl (number_of_int t) format = format_loop local_tza_impl' (number_of_int t) format.
Proof.
  induction format as [| c | c d format IH IH'] using list_two_ind; [reflexivity | reflexivity |]. rewrite zoneless_step, !format_loop_step. destruct (negb (c =? LIT_CHAR_DOLLAR_SIGN)); intros H.
  - now rewrite (IH' H).
  - apply andb_true_iff in H as [H1 H2]. now rewrite (IH H2), (directive_zone local_tza_impl local_tza_impl' _ d H1).
Qed.

Lemma to_iso_string_spec local_tza_impl t f : is_time t -> valid_fields f -> time_of f = t -> ecma_date_value_to_iso_string local_tza_impl (number_of_int t) = Some (iso_text f).
Proof.
  intros Ht V T. assert (Hn : near_time t) by (unfold near_time, is_time in *; lia). unfold ecma_date_value_to_iso_string, ecma_date_to_string_format.
  rewrite (format_zone local_tza_impl (fun _ => None)) by reflexivity.
  rewrite (format_loop_spec (fun _ => None) t f Hn V T ltac:(split; discriminate) _ (iso_text f)); [now rewrite (proj2 (Z.leb_le _ _) (iso_text_length f)) | reflexivity].
Qed.


(** C15: ISO strings round trip.  For every time value and whatever the zone,
    toISOString is the year in four digits, or with a sign in six, month, date,
    hours, minutes, seconds and milliseconds of the time, and Date.parse of this
    text, in whatever zone, is the time again. *)
Theorem date_iso_roundtrip local_tza_impl local_tza_impl' t o args : is_time t -> date_value o = number_of_int t ->
  exists f, valid_fields f /\ time_of f = t /\
    ecma_builtin_date_prototype_dispatch_routine local_tza_impl TO_ISO_STRING (Some o) args = Some (A_STRING (iso_text f), Some o) /\
    ecma_builtin_date_parse local_tza_impl' (iso_text f) = Some (number_of_int t).
Proof.
  intros Ht Ho. assert (Hn : near_time t) by (unfold near_time, is_time in *; lia). assert (He : exact_integer t) by (now apply near_exact). destruct (fields_of_time t Hn) as (f & V & T). exists f. splits; try assumption.
  - cbn [ecma_builtin_date_prototype_dispatch_routine]. rewrite Ho, nan_int, (to_iso_string_spec local_tza_impl t f Ht V T) by exact He. reflexivity.
  - unfold ecma_builtin_date_parse. rewrite parse_iso_text by (rewrite ?T; assumption). now rewrite T, nan_int by exact He.
Qed.

Lemma date_iso_roundtrip_witness : exists f, time_of f = -62198755200000 /\
  ecma_builtin_date_prototype_dispatch_routine (fun _ => None) TO_ISO_STRING (Some (mk_date false 0 (number_of_int (-62198755200000)))) [] =
    Some (A_STRING (iso_text f), Some (mk_date false 0 (number_of_int (-62198755200000)))) /\
  ecma_builtin_date_parse (fun _ => Some 3600000) (iso_text f) = Some (number_of_int (-62198755200000)).
Proof.
  destruct (date_iso_roundtrip (fun _ => None) (fun _ => Some 3600000) (-62198755200000) (mk_date false 0 (number_of_int (-62198755200000))) []) as (f & V & T & E & P); [unfold is_time; lia | reflexivity |].
  exists f. auto.
Defined.

(** ** The other formats *)

Definition day_name (f : fields) : list Z := nth (Z.to_nat ((day_of_fields f + 4) mod 7)) day_names_p [].
Definition month_name (f : fields) : list Z := nth (Z.to_nat (f_month f)) month_names_p [].
Definition year_text (year : Z) : list Z := (if year <? 0 then [LIT_CHAR_MINUS] else []) ++ last_digits (year_width year) (Z.abs year).

(** The texts up to " GMT"; [utc] is the format of toUTCString *)
Definition clock_text (f : fields) (rest : list Z) : list Z := two (f_hour f) ++ 58 :: two (f_minute f) ++ 58 :: two (f_second f) ++ bytes_of_string " GMT" ++ rest.
Definition day_text (utc : bool) (f : fields) (rest : list Z) : list Z :=
  if utc then 44 :: 32 :: two (f_date f) ++ 32 :: month_name f ++ 32 :: rest else 32 :: month_name f ++ 32 :: two (f_date f) ++ 32 :: rest.
Definition gmt_text (utc : bool) (f : fields) (rest : list Z) : list Z := day_name f ++ day_text utc f (year_text (f_year f) ++ 32 :: clock_text f rest).

Lemma week_day_cases (P : Z -> Prop) : P 0 -> P 1 -> P 2 -> P 3 -> P 4 -> P 5 -> P 6 -> forall k, 0 <= k < 7 -> P k.
Proof.
  intros ? ? ? ? ? ? ? k Hk. destruct (Z.eq_dec k 0) as [-> | ?]; [assumption |]. destruct (Z.eq_dec k 1) as [-> | ?]; [assumption |]. destruct (Z.eq_dec k 2) as [-> | ?]; [assumption |].
  destruct (Z.eq_dec k 3) as [-> | ?]; [assumption |]. destruct (Z.eq_dec k 4) as [-> | ?]; [assumption |]. destruct (Z.eq_dec k 5) as [-> | ?]; [assumption |]. replace k with 6 by lia. assumption.
Qed.

Lemma name_long a b c d (rest : list Z) : (3 <? zlength (a :: b :: c :: d :: rest)) = true.
Proof. apply Z.ltb_lt. rewrite !zlength_cons. pose proof (zlength_nonneg rest). lia. Qed.

(** The name of a numeral *)
Ltac eval_name := match goal with |- context [nth (Z.to_nat ?k) ?names []] => let name := eval vm_compute in (nth (Z.to_nat k) names []) in change (nth (Z.to_nat k) names []) with name end.

Lemma parse_day_name f c rest : ecma_date_parse_day_name (day_name f ++ c :: rest) = (true, c :: rest).
Proof.
  unfold day_name. pose proof (Z.mod_pos_bound (day_of_fields f + 4) 7 ltac:(lia)) as H. set (k := (day_of_fields f + 4) mod 7) in *. clearbody k. revert k H.
  apply week_day_cases; eval_name; unfold ecma_date_parse_day_name; cbn [app]; rewrite name_long; reflexivity.
Qed.

Lemma parse_month_name f c rest : 0 <= f_month f < 12 -> ecma_date_parse_month_name (month_name f ++ c :: rest) = (f_month f + 1, c :: rest).
Proof.
  unfold month_name. intros H. generalize (f_month f) H. clear f H.
  apply month_cases; eval_name; unfold ecma_date_parse_month_name; cbn [app]; rewrite name_long; reflexivity.
Qed.

Lemma year_digits_last n k v acc count rest : 0 <= v < 10 ^ Z.of_nat n ->
  year_digits (n + k) (last_digits n v ++ rest) acc count = year_digits k rest (acc * 10 ^ Z.of_nat n + v) (count + Z.of_nat n).
Proof.
  revert k v rest. induction n as [| n IH]; intros k v rest Hv; [cbn [last_digits app plus]; f_equal; change (10 ^ Z.of_nat 0) with 1 in *; lia |].
  rewrite Nat2Z.inj_succ, Z.pow_succ_r in * by lia. cbn [last_digits]. rewrite <- app_assoc. cbn [app]. set (p := 10 ^ Z.of_nat n) in *.
  rewrite Z.quot_div_nonneg, Z.rem_mod_nonneg by lia. pose proof (Z.div_mod v 10 ltac:(lia)). pose proof (Z.mod_pos_bound v 10 ltac:(lia)).
  replace (S n + k)%nat with (n + S k)%nat by lia. rewrite IH by (fold p; try split; try apply Z.div_pos; lia). fold p. cbn [year_digits].
  assert (Hd : lit_char_is_decimal_digit (v mod 10 + LIT_CHAR_0) = true) by (unfold lit_char_is_decimal_digit, LIT_CHAR_0, LIT_CHAR_9; lia). rewrite Hd.
  f_equal; unfold LIT_CHAR_0; lia.
Qed.

Lemma year_width_spec year : -300000 <= year <= 300000 -> (4 <= year_width year <= 6)%nat /\ 0 <= Z.abs year < 10 ^ Z.of_nat (year_width year).
Proof. intros Hy. unfold year_width. destruct (Z.leb_spec 100000 (Z.abs year)), (Z.leb_spec 10000 (Z.abs year)); cbn; lia. Qed.

Lemma year_digits_spec year rest : -300000 <= year <= 300000 ->
  year_digits 6 (last_digits (year_width year) (Z.abs year) ++ 32 :: rest) 0 0 = (Z.abs year, Z.of_nat (year_width year), 32 :: rest).
Proof.
  intros Hy. destruct (year_width_spec year Hy) as [Hw Hv]. replace 6%nat with (year_width year + (6 - year_width year))%nat by lia. rewrite year_digits_last by exact Hv.
  destruct (6 - year_width year)%nat; cbn; do 2 f_equal; lia.
Qed.

Lemma parse_year_spec year rest : -300000 <= year <= 300000 -> ecma_date_parse_year (year_text year ++ 32 :: rest) = (number_of_int year, 32 :: rest).
Proof.
  intros Hy. destruct (year_width_spec year Hy) as [Hw Hv]. unfold ecma_date_parse_year, year_text. rewrite <- app_assoc. destruct (Z.ltb_spec year 0).
  - cbn [app ecma_date_parse_special_char]. rewrite Z.eqb_refl, year_digits_spec by exact Hy. rewrite (proj2 (Z.leb_le 4 _)) by lia. do 2 f_equal. lia.
  - cbn [app]. destruct (last_digits_head (pred (year_width year)) (Z.abs year) (32 :: rest) ltac:(lia)) as (c & r & E & Hc). replace (S (pred (year_width year))) with (year_width year) in E by lia.
    destruct (digit_no_sign c Hc) as (N & _). rewrite E. cbn [ecma_date_parse_special_char]. rewrite N, <- E, year_digits_spec by exact Hy. rewrite (proj2 (Z.leb_le 4 _)) by lia. do 2 f_equal. lia.
Qed.

Lemma expect_digits_two min max v rest limit : ECMA_DATE_LIMIT_MIN limit = min -> ECMA_DATE_LIMIT_MAX limit = max -> 0 <= v < 100 -> min <= v <= max ->
  expect_digits (two v ++ rest) 2 limit = Some (number_of_int v, rest).
Proof. intros Hmin Hmax Hv Hl. unfold expect_digits. rewrite (two_chars min max) by assumption. now rewrite nan_int by exact_int. Qed.

Lemma expect_char c rest : expect (c :: rest) c = Some rest.
Proof. unfold expect. cbn [ecma_date_parse_special_char]. now rewrite Z.eqb_refl. Qed.

(** The time of the fields without the milliseconds *)
Definition whole_seconds (f : fields) : fields := mk_fields (f_year f) (f_month f) (f_date f) (f_hour f) (f_minute f) (f_second f) 0.

Lemma whole_seconds_spec f : valid_fields f -> valid_fields (whole_seconds f) /\ time_of (whole_seconds f) = time_of f - time_of f mod 1000 /\
  day_of_fields (whole_seconds f) = day_of_fields f /\ ms_of_fields (whole_seconds f) = ms_of_fields f - f_ms f.
Proof.
  intros V. destruct f as [y m d h mi s x]. unfold valid_fields, whole_seconds, time_of, day_of_fields, ms_of_fields in *. cbn [f_year f_month f_date f_hour f_minute f_second f_ms] in *.
  destruct V as (Vd & Hh & Hmi & Hs & Hx). change ECMA_DATE_MS_PER_DAY with 86400000. splits; try lia; try assumption. Z.div_mod_to_equations. lia.
Qed.

Lemma special_char_other c c' rest : (c =? c') = false -> ecma_date_parse_special_char (c :: rest) c' = (false, c :: rest).
Proof. intros H. cbn [ecma_date_parse_special_char]. now rewrite H. Qed.
Lemma special_char_same c rest : ecma_date_parse_special_char (c :: rest) c = (true, rest).
Proof. cbn [ecma_date_parse_special_char]. now rewrite Z.eqb_refl. Qed.

(** The part of parse_until_gmt between the name of the day and the year *)
Definition parse_day_month (utc : bool) (str : list Z) : option (Z * Z * list Z) :=
  if utc then
    let? (day, str) := expect_digits str 2 (ECMA_DATE_LIMIT 0 31) in
    let? str := expect str LIT_CHAR_SP in
    let? (month, str) := expect_month str in
    Some (day, month, str)
  else
    let? (month, str) := expect_month str in
    let? str := expect str LIT_CHAR_SP in
    let? (day, str) := expect_digits str 2 (ECMA_DATE_LIMIT 0 31) in
    Some (day, month, str).

Lemma expect_month_spec f c rest : 0 <= f_month f < 12 -> expect_month (month_name f ++ c :: rest) = Some (number_of_int (f_month f + 1), c :: rest).
Proof. intros H. unfold expect_month. rewrite parse_month_name by exact H. now rewrite (proj2 (Z.eqb_neq _ 0)) by lia. Qed.

Lemma parse_day_text utc f rest : valid_fields f ->
  (let '(is_toUTCString_format, str) := ecma_date_parse_special_char (day_text utc f rest) 44 in
   let? str := expect str LIT_CHAR_SP in let? r := parse_day_month is_toUTCString_format str in Some (is_toUTCString_format, r)) =
  Some (utc, (number_of_int (f_date f), number_of_int (f_month f + 1), 32 :: rest)).
Proof.
  intros ((Hm & Hd) & _). pose proof (month_length_pos (f_year f) (f_month f) Hm). unfold day_text. destruct utc.
  - rewrite special_char_same. rewrite expect_char. unfold parse_day_month. rewrite (expect_digits_two 0 31) by (reflexivity || lia). rewrite expect_char, expect_month_spec by exact Hm. reflexivity.
  - rewrite special_char_other by reflexivity. rewrite expect_char. unfold parse_day_month. rewrite expect_month_spec by exact Hm. rewrite expect_char, (expect_digits_two 0 31) by (reflexivity || lia). reflexivity.
Qed.

(** And the part from the year on *)
Definition parse_year_clock (day month : Z) (utc : bool) (str : list Z) : option (Z * Z * Z * Z * bool * list Z) :=
  let? str := expect str LIT_CHAR_SP in
  let '(year, str) := ecma_date_parse_year str in
  if ecma_number_is_nan year then None
  else
    let? str := expect str LIT_CHAR_SP in
    let? (hours, str) := expect_digits str 2 (ECMA_DATE_LIMIT 0 24) in
    let? str := expect str 58 in
    let? (minutes, str) := expect_digits str 2 (ECMA_DATE_LIMIT 0 59) in
    let? str := expect str 58 in
    let? (seconds, str) := expect_digits str 2 (ECMA_DATE_LIMIT 0 59) in
    if number_eq hours (number_of_int 24) && (negb (number_eq minutes (number_of_int 0)) || negb (number_eq seconds (number_of_int 0))) then None
    else if (zlength str <? 4) || (if list_eq_dec Z.eq_dec (firstn 4 str) (bytes_of_string " GMT") then false else true) then None
    else Some (day, month, year, ecma_date_make_time hours minutes seconds (number_of_int 0), utc, skipn 4 str).

Lemma parse_year_clock_spec day month utc f rest : valid_fields f -> -300000 <= f_year f <= 300000 ->
  parse_year_clock day month utc (32 :: year_text (f_year f) ++ 32 :: clock_text f rest) = Some (day, month, number_of_int (f_year f), number_of_int (ms_of_fields (whole_seconds f)), utc, rest).
Proof.
  intros (_ & Hh & Hmi & Hs & Hx) Hy. unfold parse_year_clock. rewrite expect_char, parse_year_spec by exact Hy. rewrite nan_int by exact_int. rewrite expect_char. unfold clock_text.
  rewrite (expect_digits_two 0 24) by (reflexivity || lia). rewrite expect_char, (expect_digits_two 0 59) by (reflexivity || lia). rewrite expect_char, (expect_digits_two 0 59) by (reflexivity || lia).
  rewrite eq_ints by exact_int. rewrite (proj2 (Z.eqb_neq (f_hour f) 24)) by lia. cbn [andb].
  change (bytes_of_string " GMT" ++ rest) with (32 :: 71 :: 77 :: 84 :: rest). rewrite (proj2 (Z.ltb_ge _ 4)) by (rewrite !zlength_cons; pose proof (zlength_nonneg rest); lia).
  cbn [orb firstn skipn]. change (bytes_of_string " GMT") with [32; 71; 77; 84]. destruct (list_eq_dec Z.eq_dec [32; 71; 77; 84] [32; 71; 77; 84]) as [_ | Hne]; [| congruence].
  rewrite make_time_spec by (unfold small; lia). reflexivity.
Qed.

Lemma until_gmt_parts str : parse_until_gmt str =
  let? str := (match ecma_date_parse_day_name str with (true, str) => Some str | (false, _) => None end) in
  let? (utc, (day, month, str)) :=
    (let '(is_toUTCString_format, str) := ecma_date_parse_special_char str 44 in
     let? str := expect str LIT_CHAR_SP in let? r := parse_day_month is_toUTCString_format str in Some (is_toUTCString_format, r)) in
  parse_year_clock day month utc str.
Proof.
  unfold parse_until_gmt. destruct (match ecma_date_parse_day_name str with (true, str) => Some str | (false, _) => None end) as [str1 |]; [| reflexivity].
  destruct (ecma_date_parse_special_char str1 44) as [utc str2]. destruct (expect str2 LIT_CHAR_SP) as [str3 |]; [| reflexivity]. fold (parse_day_month utc str3).
  destruct (parse_day_month utc str3) as [[[day month] str4] |]; reflexivity.
Qed.

Lemma day_text_head utc f rest : exists c str, day_text utc f rest = c :: str.
Proof. unfold day_text. destruct utc; eauto. Qed.

Lemma until_gmt_spec utc f rest : valid_fields f -> -300000 <= f_year f <= 300000 ->
  parse_until_gmt (gmt_text utc f rest) = Some (number_of_int (f_date f), number_of_int (f_month f + 1), number_of_int (f_year f), number_of_int (ms_of_fields (whole_seconds f)), utc, rest).
Proof.
  intros V Hy. rewrite until_gmt_parts. unfold gmt_text. destruct (day_text_head utc f (year_text (f_year f) ++ 32 :: clock_text f rest)) as (c & str & E). rewrite E, parse_day_name, <- E.
  rewrite parse_day_text by exact V. now apply parse_year_clock_spec.
Qed.

(** ** Round trips through the other formats *)

(** The text of a zone, hours and minutes *)
Definition zone_text (zone : Z) : list Z :=
  (if 0 <=? zone then LIT_CHAR_PLUS else LIT_CHAR_MINUS) :: two (Z.abs zone / 3600000) ++ two (Z.abs zone mod 3600000 / 60000).

(** A zone of whole minutes, less than a day from UTC *)
Definition minutes_zone (zone : Z) : Prop := - ECMA_DATE_MS_PER_DAY < zone < ECMA_DATE_MS_PER_DAY /\ zone mod 60000 = 0.

Lemma parse_zone_text z : minutes_zone z -> exists offset, parse_gmt_offset (zone_text z) = Some (offset, []) /\
  forall t, exact_integer t -> exact_integer (t - z) -> number_plus (number_of_int t) offset = number_of_int (t - z).
Proof.
  unfold minutes_zone. change ECMA_DATE_MS_PER_DAY with 86400000. intros [Hb Hm]. set (h := Z.abs z / 3600000). set (mi := Z.abs z mod 3600000 / 60000).
  assert (E : 0 <= h < 24 /\ 0 <= mi < 60 /\ 3600000 * h + 60000 * mi = Z.abs z) by (unfold h, mi; Z.div_mod_to_equations; lia). destruct E as (Hh & Hmi & E).
  unfold parse_gmt_offset, zone_text. fold h mi. rewrite <- (app_nil_r (two mi)).
  assert (S : ecma_date_check_two_chars ((if 0 <=? z then LIT_CHAR_PLUS else LIT_CHAR_MINUS) :: two h ++ two mi ++ []) LIT_CHAR_MINUS LIT_CHAR_PLUS = true) by (destruct (0 <=? z); reflexivity).
  rewrite S. cbn [negb hd tl]. rewrite (expect_digits_two 0 24) by (reflexivity || lia). rewrite eq_ints by exact_int. rewrite (proj2 (Z.eqb_neq h 24)) by lia.
  rewrite (expect_digits_two 0 59) by (reflexivity || lia). rewrite make_time_spec by (unfold small; lia). replace (3600000 * h + 60000 * mi + 1000 * 0 + 0) with (Z.abs z) by lia.
  eexists. split; [reflexivity |]. intros t Ht Htz. destruct (Z.leb_spec 0 z).
  - change (LIT_CHAR_PLUS =? LIT_CHAR_MINUS) with false. cbn iota. change (number_plus (number_of_int t) (number_opp (number_of_int (Z.abs z)))) with (number_minus (number_of_int t) (number_of_int (Z.abs z))).
    rewrite Z.abs_eq by lia. apply minus_ints; exact_int.
  - rewrite Z.eqb_refl, Z.abs_neq by lia. rewrite plus_ints by exact_int. f_equal.
Qed.

Lemma parse_gmt_text utc f z : valid_fields f -> is_local (time_of f) -> minutes_zone z -> (utc = true -> z = 0) ->
  ecma_builtin_date_parse_toString_formats (gmt_text utc f (if utc then [] else zone_text z)) = Some (number_of_int (time_of (whole_seconds f) - z)).
Proof.
  intros V Ht Hz Hu. assert (Hn : near_time (time_of f)) by (unfold near_time, is_local in *; lia). pose proof (year_in_range (time_of f) f Hn V eq_refl) as Hy.
  destruct (whole_seconds_spec f V) as (V0 & T0 & D0 & M0). assert (Ht0 : is_local (time_of (whole_seconds f))) by (rewrite T0; unfold is_local in *; Z.div_mod_to_equations; lia).
  pose proof (moderate_time (whole_seconds f) (valid_moderate _ V0 Ht0)) as (E1 & _). pose proof (valid_time_of (whole_seconds f) V0) as [_ Hms]. change ECMA_DATE_MS_PER_DAY with 86400000 in Hms.
  assert (Hb : - 86400000 < z < 86400000) by apply Hz. assert (Hday : time_of (whole_seconds f) = day_of_fields (whole_seconds f) * 86400000 + ms_of_fields (whole_seconds f)) by reflexivity. assert (Hm : 0 <= f_month f < 12) by apply V.
  unfold ecma_builtin_date_parse_toString_formats. rewrite until_gmt_spec by assumption. unfold is_local in Ht0.
  assert (Et : exists time, (if utc then Some (number_of_int (ms_of_fields (whole_seconds f)), if utc then [] else zone_text z)
      else let? (offset, str) := parse_gmt_offset (if utc then [] else zone_text z) in Some (number_plus (number_of_int (ms_of_fields (whole_seconds f))) offset, str)) = Some (time, []) /\
      time = number_of_int (ms_of_fields (whole_seconds f) - z)).
  { destruct utc; [eexists; split; [reflexivity |]; f_equal; specialize (Hu eq_refl); lia |]. destruct (parse_zone_text z Hz) as (offset & E & Ho). rewrite E. eexists. split; [reflexivity |]. apply Ho; exact_int. }
  destruct Et as (time & -> & ->). rewrite minus_ints by exact_int. replace (f_month f + 1 - 1) with (f_month (whole_seconds f)) by (cbn [whole_seconds f_month]; lia).
  change (f_year f) with (f_year (whole_seconds f)). change (f_date f) with (f_date (whole_seconds f)). rewrite E1. change ECMA_DATE_MS_PER_DAY with 86400000.
  rewrite make_date_spec by exact_int. do 2 f_equal. lia.
Qed.

Lemma parse_basic_name local_tza_impl f rest : ecma_builtin_date_parse_basic local_tza_impl (day_name f ++ rest) = Some number_make_nan.
Proof.
  assert (H : exists c str, day_name f = c :: str /\ lit_char_is_decimal_digit c = false /\ (c =? LIT_CHAR_MINUS) = false /\ (c =? LIT_CHAR_PLUS) = false).
  { unfold day_name. pose proof (Z.mod_pos_bound (day_of_fields f + 4) 7 ltac:(lia)) as H. revert H. generalize ((day_of_fields f + 4) mod 7). apply week_day_cases; eval_name; repeat eexists. }
  destruct H as (c & str & E & Hc & H1 & H2). rewrite E. cbn [app]. rewrite parse_basic_parts. unfold parse_iso_year. cbn [ecma_date_check_two_chars]. rewrite H1, H2. cbn [orb].
  unfold ecma_date_parse_date_chars. destruct (zlength (c :: str ++ rest) <? 4); [reflexivity |]. change (Z.to_nat 4) with 4%nat. cbn [parse_digits]. rewrite Hc. reflexivity.
Qed.

Lemma gmt_text_length utc f z : valid_fields f -> -300000 <= f_year f <= 300000 -> zlength (gmt_text utc f (if utc then [] else zone_text z)) <= 37.
Proof.
  intros ((Hm & _) & _) Hy. pose proof (month_name_length (f_month f) Hm) as Lm. pose proof (day_name_length ((day_of_fields f + 4) mod 7) (Z.mod_pos_bound _ 7 ltac:(lia))) as Ld.
  destruct (year_width_spec (f_year f) Hy) as [Hw _].
  unfold gmt_text, day_text, clock_text, zone_text, year_text, two, zlength. change (bytes_of_string " GMT") with [32; 71; 77; 84]. fold (day_name f) in Ld. fold (month_name f) in Lm. destruct utc, (f_year f <? 0);
    repeat first [rewrite length_app | rewrite last_digits_length | rewrite Ld | rewrite Lm | progress cbn [List.length]]; lia.
Qed.

Lemma to_utc_string_spec local_tza_impl t f : is_time t -> valid_fields f -> time_of f = t -> ecma_date_value_to_utc_string local_tza_impl (number_of_int t) = Some (gmt_text true f []).
Proof.
  intros Ht V T. assert (Hn : near_time t) by (unfold near_time, is_time in *; lia). pose proof (year_in_range t f Hn V T) as Hy. unfold ecma_date_value_to_utc_string, ecma_date_to_string_format.
  rewrite (format_zone local_tza_impl (fun _ => None)) by reflexivity.
  rewrite (format_loop_spec (fun _ => None) t f Hn V T ltac:(split; discriminate) _ (gmt_text true f [])); [now rewrite (proj2 (Z.leb_le _ _) (gmt_text_length true f 0 V Hy)) |].
  reflexivity.
Qed.

(** A zone that is the same at a time and at its local time *)
Definition steady_zone (local_tza_impl : Z -> option Z) (t : Z) : Prop := minutes_zone (zone local_tza_impl t) /\ zone local_tza_impl (t + zone local_tza_impl t) = zone local_tza_impl t.

Lemma to_string_spec local_tza_impl t f : is_time t -> steady_zone local_tza_impl t -> valid_fields f -> time_of f = t + zone local_tza_impl t ->
  ecma_date_value_to_string local_tza_impl (number_of_int t) = Some (gmt_text false f (zone_text (zone local_tza_impl t))).
Proof.
  intros Ht [Hz Hs] V T. set (z := zone local_tza_impl t) in *. assert (Hb : - 86400000 < z < 86400000) by apply Hz. unfold is_time in Ht. assert (Hn : near_time (t + z)) by (unfold near_time; lia).
  pose proof (year_in_range (t + z) f Hn V T) as Hy. unfold ecma_date_value_to_string, ecma_date_to_string_format. fold (zone local_tza_impl t). fold z. rewrite plus_ints by exact_int.
  rewrite (format_loop_spec local_tza_impl (t + z) f Hn V T ltac:(rewrite Hs; change ECMA_DATE_MS_PER_DAY with 86400000; lia) _ (gmt_text false f (zone_text z))).
  - now rewrite (proj2 (Z.leb_le _ _) (gmt_text_length false f z V Hy)).
  - rewrite Hs. unfold zone_text. rewrite <- (app_nil_r (two (Z.abs z mod 3600000 / 60000))). reflexivity.
Qed.

(** C16: The texts of toUTCString and toString.  toUTCString prints the fields of the
    time, and toString those of the local time with the zone, where the zone is of
    whole minutes, less than a day and the same at the local time; Date.parse of
    either text, in whatever zone, is the time without its milliseconds. *)
Theorem date_text_roundtrip local_tza_impl local_tza_impl' t o args : is_time t -> date_value o = number_of_int t ->
  (exists f, valid_fields f /\ time_of f = t /\
    date_to_utc_string local_tza_impl (Some o) = Some (A_STRING (gmt_text true f [])) /\
    ecma_builtin_date_parse local_tza_impl' (gmt_text true f []) = Some (number_of_int (t - t mod 1000))) /\
  (steady_zone local_tza_impl t ->
   exists f, valid_fields f /\ time_of f = t + zone local_tza_impl t /\
    ecma_builtin_date_prototype_dispatch_routine local_tza_impl TO_STRING (Some o) args = Some (A_STRING (gmt_text false f (zone_text (zone local_tza_impl t))), Some o) /\
    ecma_builtin_date_parse local_tza_impl' (gmt_text false f (zone_text (zone local_tza_impl t))) = Some (number_of_int (t - t mod 1000))).
Proof.
  intros Ht Ho. assert (He : exact_integer t) by (unfold is_time in Ht; exact_int). split.
  - destruct (fields_of_time t ltac:(unfold near_time, is_time in *; lia)) as (f & V & T). exists f. splits; try assumption.
    + unfold date_to_utc_string. rewrite Ho, nan_int, (to_utc_string_spec local_tza_impl t f Ht V T) by exact He. reflexivity.
    + unfold ecma_builtin_date_parse, gmt_text. rewrite parse_basic_name. change (ecma_number_is_nan number_make_nan) with true. cbn iota. fold (gmt_text true f []).
      rewrite (parse_gmt_text true f 0 V); [| rewrite T; now apply time_local | split; [split |]; reflexivity | reflexivity]. rewrite (proj1 (proj2 (whole_seconds_spec f V))), T. do 2 f_equal. lia.
  - intros Hs. assert (Hz : minutes_zone (zone local_tza_impl t)) by apply Hs. set (z := zone local_tza_impl t) in *. assert (Hb : - 86400000 < z < 86400000) by apply Hz. unfold is_time in Ht.
    destruct (fields_of_time (t + z) ltac:(unfold near_time; lia)) as (f & V & T). exists f. splits; try assumption.
    + cbn [ecma_builtin_date_prototype_dispatch_routine]. rewrite Ho, nan_int by exact He. rewrite (to_string_spec local_tza_impl t f Ht Hs V T). reflexivity.
    + unfold ecma_builtin_date_parse, gmt_text. rewrite parse_basic_name. change (ecma_number_is_nan number_make_nan) with true. cbn iota. fold (gmt_text false f (zone_text z)).
      rewrite (parse_gmt_text false f z V); [| rewrite T; unfold is_local; lia | exact Hz | discriminate]. rewrite (proj1 (proj2 (whole_seconds_spec f V))), T. do 2 f_equal.
      destruct Hz as [_ Hz]. Z.div_mod_to_equations. lia.
Qed.

Lemma date_text_roundtrip_witness : exists f g,
  date_to_utc_string (fun _ => Some (-12600000)) (Some (mk_date false 0 (number_of_int 1234567))) = Some (A_STRING (gmt_text true f [])) /\
  ecma_builtin_date_parse (fun _ => None) (gmt_text true f []) = Some (number_of_int 1234000) /\
  ecma_builtin_date_prototype_dispatch_routine (fun _ => Some (-12600000)) TO_STRING (Some (mk_date false 0 (number_of_int 1234567))) [] =
    Some (A_STRING (gmt_text false g (zone_text (-12600000))), Some (mk_date false 0 (number_of_int 1234567))) /\
  ecma_builtin_date_parse (fun _ => None) (gmt_text false g (zone_text (-12600000))) = Some (number_of_int 1234000).
Proof.
  destruct (date_text_roundtrip (fun _ => Some (-12600000)) (fun _ => None) 1234567 (mk_date false 0 (number_of_int 1234567)) []) as [(f & _ & _ & E1 & E2) H]; [unfold is_time; lia | reflexivity |].
  destruct H as (g & _ & _ & E3 & E4); [split; [split; [split |] |]; reflexivity |]. exists f, g. auto.
Defined.

(** ** What date objects hold

    A date object always holds a time value or NaN, and an adjustment that it
    keeps is that of its value; the routines that only read never fail.  And where
    the functions of dates depart from what they mean to do. *)

#[local] Transparent ecma_date_make_day ecma_date_make_time ecma_date_make_date.
#[local] Opaque number_of_int number_plus number_minus number_times ecma_number_trunc number_opp number_divide number_floor number_fmod.

(** ** Time values *)

(** A time value: NaN, or the number of a time *)
Definition time_or_nan (v : Z) : Prop := is_u64 v /\ (ecma_number_is_nan v = true \/ exists t, is_time t /\ v = number_of_int t).

Lemma nan_value : time_or_nan number_make_nan.
Proof. split; [apply number_make_nan_u64 | left; reflexivity]. Qed.

Lemma time_clip_value x : is_u64 x -> time_or_nan (ecma_date_time_clip x).
Proof.
  intros Hx. unfold ecma_date_time_clip. destruct (ecma_number_is_finite x) eqn:Hf; [| apply nan_value]. cbn [negb orb].
  destruct (number_lt ECMA_DATE_MAX_VALUE (number_fabs x)) eqn:Hl; [apply nan_value |]. split; [now apply number_trunc_u64 |]. right.
  destruct (number_fabs_fields x Hx Hf) as (Fu & Ff & Fn & Fd). unfold ECMA_DATE_MAX_VALUE in Hl. rewrite number_lt_int, Fn, Fd in Hl by (assumption || exact_int). apply Z.ltb_ge in Hl.
  exists (Z.quot (number_num x) (number_den x)). pose proof (number_den_pos x) as D. pose proof (number_trunc_spec x Hx Hf) as N.
  assert (Hq : is_time (Z.quot (number_num x) (number_den x))).
  { unfold is_time. pose proof (Z.quot_rem' (number_num x) (number_den x)). pose proof (Z.rem_bound_abs (number_num x) (number_den x) ltac:(lia)). nia. }
  split; [exact Hq |]. apply (number_of_unique _ _ _ N). apply number_of_spec. unfold is_time in Hq. exact_int.
Qed.

(** ** Results are numbers *)

Create HintDb numbers discriminated.
#[local] Hint Constants Opaque : numbers.
#[local] Hint Resolve number_of_u64 number_make_nan_u64 number_plus_u64 number_minus_u64 number_times_u64 number_trunc_u64 number_opp_u64 : numbers.

Lemma make_time_u64 h m s ms : is_u64 h -> is_u64 m -> is_u64 s -> is_u64 ms -> is_u64 (ecma_date_make_time h m s ms).
Proof. intros. unfold ecma_date_make_time. destruct (_ || _); auto 10 with numbers. Qed.

Lemma make_day_u64 year month date v : ecma_date_make_day year month date = Some v -> is_u64 v.
Proof.
  unfold ecma_date_make_day. destruct (_ || _); [intros [= <-]; auto with numbers |].
  repeat match goal with |- match ?m with Some _ => _ | None => _ end = _ -> _ => destruct m; [| discriminate] end. intros [= <-]. auto with numbers.
Qed.

Lemma make_date_u64 day time : is_u64 day -> is_u64 time -> is_u64 (ecma_date_make_date day time).
Proof. intros. unfold ecma_date_make_date. destruct (_ || _); auto with numbers. Qed.

Lemma date_utc_u64 local_tza_impl v : is_u64 v -> is_u64 (ecma_date_utc local_tza_impl v).
Proof. intros. unfold ecma_date_utc. auto with numbers. Qed.

Lemma date_chars_u64 str n limit : is_u64 (fst (ecma_date_parse_date_chars str n limit)).
Proof. unfold ecma_date_parse_date_chars. destruct (_ <? _); [cbn; auto with numbers |]. destruct (parse_digits _ _ _) as [[num |] rest]; [| cbn; auto with numbers]. destruct (_ && _); cbn; auto with numbers. Qed.

#[local] Hint Resolve make_time_u64 make_day_u64 make_date_u64 date_utc_u64 : numbers.

(** Case analysis on the parsing functions *)
Ltac read_chars :=
  match goal with |- context [ecma_date_parse_date_chars ?s ?n ?l] =>
    let H := fresh "U" in pose proof (date_chars_u64 s n l) as H; destruct (ecma_date_parse_date_chars s n l); cbn [fst] in H
  end.

Lemma some_fst {A B} (a c : A) (b d : B) : Some (a, b) = Some (c, d) -> a = c.
Proof. now intros [= -> _]. Qed.
Lemma some_fst3 {A B C} (a d : A) (b e : B) (c f : C) : Some (a, b, c) = Some (d, e, f) -> a = d.
Proof. now intros [= -> _ _]. Qed.

Lemma parse_offset_u64 str v rest : parse_offset str = Some (v, rest) -> is_u64 v.
Proof.
  unfold parse_offset. destruct str as [| c str]; [discriminate |]. cbv zeta. read_chars. destruct (ecma_date_parse_special_char _ _) as [[] ?]; [| discriminate]. cbn [negb]. read_chars. intros E. apply some_fst in E. subst v.
  destruct (_ =? _), (number_eq _ _); auto with numbers.
Qed.

Lemma parse_iso_time_u64 str v utc rest : parse_iso_time str = Some (v, utc, rest) -> is_u64 v.
Proof.
  unfold parse_iso_time. destruct (_ <? _); [discriminate |]. read_chars. destruct (ecma_date_parse_special_char _ _) as [[] str1]; [| discriminate]. cbn [negb]. read_chars.
  destruct (ecma_date_parse_special_char _ _) as [secs str2].
  assert (H : forall seconds milliseconds str3, is_u64 seconds -> is_u64 milliseconds ->
    (if number_eq z (number_of_int 24) && (negb (number_eq z0 (number_of_int 0)) || negb (number_eq seconds (number_of_int 0)) || negb (number_eq milliseconds (number_of_int 0))) then None
     else if ecma_number_is_nan (ecma_date_make_time z z0 seconds milliseconds) then None
     else let '(zed, str) := ecma_date_parse_special_char str3 90 in
       if zed then Some (ecma_date_make_time z z0 seconds milliseconds, true, str)
       else if (zlength str =? 6) && ecma_date_check_two_chars str LIT_CHAR_MINUS LIT_CHAR_PLUS then
         let? (offset, str) := parse_offset str in Some (number_plus (ecma_date_make_time z z0 seconds milliseconds) offset, true, str)
       else Some (ecma_date_make_time z z0 seconds milliseconds, false, str)) = Some (v, utc, rest) -> is_u64 v).
  { intros seconds milliseconds str3 Hs Hm. destruct (_ && _); [discriminate |]. destruct (ecma_number_is_nan _); [discriminate |]. destruct (ecma_date_parse_special_char str3 90) as [[] str4]; [intros E; apply some_fst3 in E; subst v; auto with numbers |].
    destruct (_ && _); [| intros E; apply some_fst3 in E; subst v; auto with numbers]. destruct (parse_offset str4) as [[offset str5] |] eqn:E; [| discriminate]. intros E'. apply some_fst3 in E'. subst v. apply parse_offset_u64 in E. auto with numbers. }
  destruct secs; [| apply H; auto with numbers]. read_chars. destruct (ecma_date_parse_special_char _ 46) as [[] str5]; [read_chars |]; apply H; auto with numbers.
Qed.

Lemma parse_iso_year_u64 str : is_u64 (fst (parse_iso_year str)).
Proof. unfold parse_iso_year. destruct (if ecma_date_check_two_chars str LIT_CHAR_MINUS LIT_CHAR_PLUS then _ else _) as [[[neg digits] limit] str']. read_chars. cbn [fst]. destruct neg; auto with numbers. Qed.

Lemma parse_basic_u64 local_tza_impl str v : ecma_builtin_date_parse_basic local_tza_impl str = Some v -> is_u64 v.
Proof.
  rewrite parse_basic_parts. pose proof (parse_iso_year_u64 str) as Hy. destruct (parse_iso_year str) as [year str1]. cbn [fst] in Hy. destruct (ecma_number_is_nan year); [intros [= <-]; exact Hy |].
  destruct (parse_month_day str1) as [[month day] str2]. assert (Ht : match (if ecma_date_check_two_chars str2 84 LIT_CHAR_SP then parse_iso_time (tl str2) else Some (number_of_int 0, true, str2)) with Some (time, _, _) => is_u64 time | None => True end).
  { destruct (ecma_date_check_two_chars _ _ _); [| auto with numbers]. destruct (parse_iso_time (tl str2)) as [[[time utc] str3] |] eqn:E; [| exact I]. now apply parse_iso_time_u64 in E. }
  destruct (if ecma_date_check_two_chars str2 84 LIT_CHAR_SP then _ else _) as [[[time utc] str3] |]; [| intros [= <-]; auto with numbers]. destruct str3; [| intros [= <-]; auto with numbers].
  destruct (ecma_date_make_day year (number_minus month (number_of_int 1)) day) as [date |] eqn:E; [| discriminate]. apply make_day_u64 in E. destruct utc; intros [= <-]; auto with numbers.
Qed.

Lemma expect_digits_u64 str n limit v rest : expect_digits str n limit = Some (v, rest) -> is_u64 v.
Proof. unfold expect_digits. read_chars. destruct (ecma_number_is_nan z); [discriminate |]. intros E. apply some_fst in E. now subst v. Qed.

Lemma year_clock_u64 day month utc str day' month' year time utc' rest : parse_year_clock day month utc str = Some (day', month', year, time, utc', rest) -> is_u64 time.
Proof.
  unfold parse_year_clock. destruct (expect str LIT_CHAR_SP); [| discriminate]. destruct (ecma_date_parse_year l) as [y str1]. destruct (ecma_number_is_nan y); [discriminate |]. destruct (expect str1 LIT_CHAR_SP); [| discriminate].
  destruct (expect_digits l0 2 _) as [[hours str2] |] eqn:E1; [| discriminate]. destruct (expect str2 58); [| discriminate]. destruct (expect_digits l1 2 _) as [[minutes str3] |] eqn:E2; [| discriminate].
  destruct (expect str3 58); [| discriminate]. destruct (expect_digits l2 2 _) as [[seconds str4] |] eqn:E3; [| discriminate]. apply expect_digits_u64 in E1, E2, E3.
  destruct (_ && _); [discriminate |]. destruct (_ || _); [discriminate |]. intros E.
  assert (Et : ecma_date_make_time hours minutes seconds (number_of_int 0) = time) by congruence. rewrite <- Et. auto with numbers.
Qed.

Lemma gmt_offset_u64 str v rest : parse_gmt_offset str = Some (v, rest) -> is_u64 v.
Proof.
  unfold parse_gmt_offset. destruct (negb _); [discriminate |]. cbv zeta. destruct (expect_digits (tl str) 2 _) as [[hours str2] |] eqn:E1; [| discriminate]. destruct (expect_digits str2 2 _) as [[minutes str3] |] eqn:E2; [| discriminate].
  apply expect_digits_u64 in E1, E2. intros E. apply some_fst in E. subst v. destruct (_ =? _), (number_eq _ _); auto with numbers.
Qed.

Lemma until_gmt_u64 str day month year time utc rest : parse_until_gmt str = Some (day, month, year, time, utc, rest) -> is_u64 time.
Proof.
  rewrite until_gmt_parts. destruct (match ecma_date_parse_day_name str with (true, str) => Some str | (false, _) => None end) as [str1 |]; [| discriminate]. cbv zeta.
  destruct (ecma_date_parse_special_char str1 44) as [u str2]. destruct (expect str2 LIT_CHAR_SP) as [str3 |]; [| discriminate]. destruct (parse_day_month u str3) as [[[d m] str4] |]; [| discriminate]. apply year_clock_u64.
Qed.

Lemma toString_formats_u64 str v : ecma_builtin_date_parse_toString_formats str = Some v -> is_u64 v.
Proof.
  unfold ecma_builtin_date_parse_toString_formats. destruct (parse_until_gmt str) as [[[[[[day month] year] time] utc] str1] |] eqn:E; [| intros [= <-]; auto with numbers]. apply until_gmt_u64 in E.
  assert (Hp : match (if utc then Some (time, str1) else let? (offset, str) := parse_gmt_offset str1 in Some (number_plus time offset, str)) with Some (time, _) => is_u64 time | None => True end).
  { destruct utc; [exact E |]. destruct (parse_gmt_offset str1) as [[offset str2] |] eqn:E2; [| exact I]. apply gmt_offset_u64 in E2. auto with numbers. }
  destruct (if utc then _ else _) as [[t [| c str2]] |]; [| intros [= <-]; auto with numbers..]. destruct (ecma_date_make_day _ _ _) as [date |] eqn:Ed; [| discriminate]. apply make_day_u64 in Ed. intros [= <-]. auto with numbers.
Qed.

Lemma date_parse_u64 local_tza_impl str v : ecma_builtin_date_parse local_tza_impl str = Some v -> is_u64 v.
Proof.
  unfold ecma_builtin_date_parse. destruct (ecma_builtin_date_parse_basic local_tza_impl str) as [tv |] eqn:E; [| discriminate]. apply parse_basic_u64 in E.
  destruct (ecma_number_is_nan tv); [apply toString_formats_u64 | now intros [= <-]].
Qed.

(** ** Construction *)

(** The results of conversions are numbers, and a date among the arguments holds a time *)
Definition number_argument (n : option Z) : Prop := match n with Some n => is_u64 n | None => True end.
Definition sound_argument (a : date_argument) : Prop :=
  match date_object a with Some v => time_or_nan v | None => True end /\ number_argument (to_number a) /\
  match to_primitive a with Some (OTHER n) => number_argument n | _ => True end.

Lemma convert_all_u64 args nums : Forall number_argument args -> convert_all args = Some nums -> Forall is_u64 nums.
Proof.
  intros F. revert nums. induction F as [| [n |] args Hn F IH]; intros nums; cbn [convert_all]; [now intros [= <-] | | discriminate].
  destruct (convert_all args) as [ns |]; [| discriminate]. intros [= <-]. constructor; [exact Hn | now apply IH].
Qed.

Lemma Forall_first {A} (P : A -> Prop) n l : Forall P l -> Forall P (firstn n l).
Proof. intros F. revert n. induction F; intros [| n]; cbn [firstn]; constructor; auto. Qed.
Lemma Forall_rest {A} (P : A -> Prop) n l : Forall P l -> Forall P (skipn n l).
Proof. intros F. revert n. induction F; intros [| n]; cbn [skipn]; auto. Qed.

Lemma nth_u64 l i d : Forall is_u64 l -> is_u64 d -> is_u64 (nth i l d).
Proof. intros F Hd. destruct (nth_in_or_default i l d) as [H | ->]; [| exact Hd]. rewrite Forall_forall in F. now apply F. Qed.

Lemma construct_helper_u64 args v : Forall number_argument args -> ecma_date_construct_helper args = Some (VALUE v) -> is_u64 v.
Proof.
  intros F. unfold ecma_date_construct_helper. destruct (convert_all (firstn 7 args)) as [nums |] eqn:E; [| discriminate]. apply convert_all_u64 in E; [| now apply Forall_first].
  set (l := nums ++ _). assert (Fl : Forall is_u64 l) by (apply Forall_app; split; [exact E | apply Forall_rest; repeat constructor; apply number_of_u64]). clearbody l. cbv zeta.
  destruct (ecma_date_make_day _ _ _) as [day |] eqn:Ed; [| discriminate]. apply make_day_u64 in Ed. intros [= <-]. apply make_date_u64; [exact Ed |]. apply make_time_u64; apply nth_u64; auto with numbers.
Qed.

Section Zone.
Context (local_tza_impl : Z -> option Z).

Definition sound_date (o : date_object_t) : Prop :=
  time_or_nan (date_value o) /\ (tza_set o = true -> tza o = ecma_date_local_time_zone_adjustment local_tza_impl (date_value o)).

Lemma fresh_date_sound z v : time_or_nan v -> sound_date (mk_date false z v).
Proof. intros Hv. split; [exact Hv | discriminate]. Qed.

Lemma date_create_sound prototype v o : time_or_nan v -> ecma_builtin_date_create prototype v = VALUE o -> sound_date o.
Proof. intros Hv. unfold ecma_builtin_date_create. destruct prototype; [| discriminate]. intros [= <-]. now apply fresh_date_sound. Qed.

Lemma construct_sound time_now prototype args o : Forall sound_argument args -> time_or_nan (ecma_builtin_date_now_helper time_now) ->
  ecma_builtin_date_dispatch_construct local_tza_impl time_now prototype args = Some (VALUE o) -> sound_date o.
Proof.
  intros F Hn. unfold ecma_builtin_date_dispatch_construct. destruct args as [| arg [| arg' args]].
  - intros E. apply (date_create_sound prototype (ecma_builtin_date_now_helper time_now)); [exact Hn | congruence].
  - inversion F as [| ? ? (Hd & _ & Hp) _]; subst. destruct (date_object arg) as [v |]; [intros E; apply (date_create_sound prototype v); [exact Hd | congruence] |].
    destruct (to_primitive arg) as [[str | [tv |]] |]; try discriminate.
    + destruct (ecma_builtin_date_parse local_tza_impl str) as [tv |] eqn:E; [| discriminate]. apply date_parse_u64 in E. intros E'.
      apply (date_create_sound prototype (ecma_date_time_clip tv)); [now apply time_clip_value | congruence].
    + intros E. apply (date_create_sound prototype (ecma_date_time_clip tv)); [now apply time_clip_value | congruence].
  - destruct (ecma_date_construct_helper _) as [[tv |] |] eqn:E; try discriminate. intros E'.
    assert (Hv : is_u64 tv) by (apply (construct_helper_u64 (map to_number (arg :: arg' :: args))); [apply Forall_map; eapply Forall_impl; [| exact F]; now intros a (_ & H & _) | exact E]).
    apply (date_create_sound prototype (ecma_date_time_clip (ecma_date_utc local_tza_impl tv))); [apply time_clip_value; auto with numbers | congruence].
Qed.

Lemma full_date_sound r o day time res o' : is_u64 day -> is_u64 time -> set_full_date local_tza_impl r o day time = (res, o') -> sound_date o'.
Proof.
  intros Hd Ht. unfold set_full_date. set (v := ecma_date_time_clip _). intros E. assert (o' = mk_date false (tza o) v) as -> by congruence.
  apply fresh_date_sound, time_clip_value. destruct (BUILTIN_DATE_FUNCTION_IS_UTC r); auto with numbers.
Qed.

Lemma day_part_u64 r nums year month day v : set_day_part r nums year month day = Some v -> is_u64 v.
Proof. intros H. destruct r; cbn [set_day_part] in H; match type of H with None = _ => discriminate H | _ => exact (make_day_u64 _ _ _ _ H) end. Qed.

Lemma time_part_u64 r nums h m s ms v : Forall is_u64 nums -> is_u64 h -> is_u64 m -> is_u64 s -> is_u64 ms -> set_time_part r nums h m s ms = Some v -> is_u64 v.
Proof.
  intros F Hh Hm Hs Hms. assert (H : forall i d, is_u64 d -> is_u64 (converted_or nums i d)) by (intros i d Hd; now apply nth_u64).
  intros E. destruct r; cbn [set_time_part] in E; match type of E with None = _ => discriminate E | Some ?t = Some v => assert (Ev : v = t) by congruence end; rewrite Ev; apply make_time_u64; auto with numbers.
Qed.

Lemma set_day_sound r o nums dv res o' : sound_date o -> Forall is_u64 nums -> set_day local_tza_impl r o nums dv = Some (res, o') -> sound_date o'.
Proof.
  intros Ho F. unfold set_day. destruct (_ && _); [intros E; assert (o' = o) as -> by congruence; exact Ho |]. cbv zeta.
  destruct (ecma_date_time_in_day_from_time _) as [time_part |]; [| discriminate]. destruct (ecma_date_year_from_time _) as [year |]; [| discriminate]. destruct (ecma_date_month_from_time _) as [month |]; [| discriminate].
  destruct (ecma_date_date_from_time _) as [day |]; [| discriminate]. set (first := converted_or nums 0 number_make_nan).
  destruct (match r with SET_YEAR => ecma_number_is_nan first | _ => false end) eqn:En.
  - intros E. assert (o' = mk_date false (tza o) first) as -> by congruence. apply fresh_date_sound. split; [apply nth_u64; auto with numbers |]. left. destruct r; try discriminate En. exact En.
  - destruct (set_day_part _ _ _ _ _) as [day_part |] eqn:E; [| discriminate]. apply day_part_u64 in E. intros E'. apply (full_date_sound r o day_part (number_of_int time_part) res o'); auto with numbers. congruence.
Qed.

Lemma set_time_sound r o nums dv res o' : sound_date o -> Forall is_u64 nums -> set_time local_tza_impl r o nums dv = Some (res, o') -> sound_date o'.
Proof.
  intros Ho F. unfold set_time. destruct (ecma_number_is_nan dv); [intros E; assert (o' = o) as -> by congruence; exact Ho |].
  destruct (ecma_date_day_from_time _) as [days |]; [| discriminate]. destruct (ecma_date_hour_from_time _) as [hour |]; [| discriminate]. destruct (ecma_date_min_from_time _) as [min |]; [| discriminate].
  destruct (ecma_date_sec_from_time _) as [sec |]; [| discriminate]. destruct (ecma_date_ms_from_time _) as [ms |]; [| discriminate].
  destruct (set_time_part _ _ _ _ _ _) as [time_part |] eqn:E; [| discriminate]. apply time_part_u64 in E; auto with numbers. intros E'. apply (full_date_sound r o (number_times (number_of_int days) (number_of_int ECMA_DATE_MS_PER_DAY)) time_part res o'); auto with numbers. congruence.
Qed.

Lemma dispatch_set_sound r o args res o' : sound_date o -> Forall number_argument args -> ecma_builtin_date_prototype_dispatch_set local_tza_impl r o args = Some (res, o') -> sound_date o'.
Proof.
  intros Ho F. unfold ecma_builtin_date_prototype_dispatch_set. destruct (set_conversions r) as [n |]; [| discriminate].
  destruct (convert_all (firstn n args)) as [nums |] eqn:E; [| intros E'; assert (o' = o) as -> by congruence; exact Ho]. apply convert_all_u64 in E; [| now apply Forall_first].
  destruct (if BUILTIN_DATE_FUNCTION_IS_UTC r then _ else _) as [dv |]; [| discriminate]. destruct (_ <=? _); [now apply set_day_sound | now apply set_time_sound].
Qed.

Lemma local_tza_sound o : sound_date o -> date_local_tza local_tza_impl o = Some (ecma_date_local_time_zone_adjustment local_tza_impl (date_value o)).
Proof. intros [_ Ht]. unfold date_local_tza. destruct (tza_set o); [| reflexivity]. rewrite (Ht eq_refl), Z.eqb_refl. reflexivity. Qed.

Lemma get_sound r o res o' : sound_date o -> get_with_zone local_tza_impl r o = Some (res, o') -> sound_date o'.
Proof.
  intros Ho. unfold get_with_zone. rewrite (local_tza_sound o Ho). destruct (BUILTIN_DATE_FUNCTION_IS_UTC r); destruct (ecma_builtin_date_prototype_dispatch_get _ _ _); try discriminate; intros E.
  - assert (o' = o) as -> by congruence. exact Ho.
  - assert (o' = mk_date true (ecma_date_local_time_zone_adjustment local_tza_impl (date_value o)) (date_value o)) as -> by congruence. split; [apply Ho | reflexivity].
Qed.

Lemma string_sound s o res o' : sound_date o -> string_result s o = Some (res, o') -> sound_date o'.
Proof. intros Ho. unfold string_result. destruct s; [| discriminate]. intros E. assert (o' = o) as -> by congruence. exact Ho. Qed.

Lemma date_or_nan_time v : time_or_nan v -> {ecma_number_is_nan v = true} + {ecma_number_is_nan v = false /\ exists t, is_time t /\ v = number_of_int t}.
Proof.
  intros [_ H]. destruct (ecma_number_is_nan v); [now left | right]. destruct H as [H | H]; [discriminate H | now split].
Qed.

Lemma routine_sound r o args res o' : sound_date o -> Forall number_argument args ->
  ecma_builtin_date_prototype_dispatch_routine local_tza_impl r (Some o) args = Some (res, Some o') -> sound_date o'.
Proof.
  intros Ho F. unfold ecma_builtin_date_prototype_dispatch_routine.
  assert (H : forall m, (forall res o', m = Some (res, o') -> sound_date o') -> (let? (result, o) := m in Some (result, Some o)) = Some (res, Some o') -> sound_date o').
  { intros [[res1 o1] |] Hm E; [| discriminate E]. apply (Hm res1). congruence. }
  apply H. clear H res o'. intros res o' E.
  assert (Hg : get_with_zone local_tza_impl r o = Some (res, o') -> sound_date o') by (now apply get_sound). assert (Hs : ecma_builtin_date_prototype_dispatch_set local_tza_impl r o args = Some (res, o') -> sound_date o') by (now apply dispatch_set_sound).
  assert (Ht : forall s, string_result s o = Some (res, o') -> sound_date o') by (intros s; now apply string_sound). assert (Hi : forall k, Some (k, o) = Some (res, o') -> sound_date o') by (intros k E'; assert (o' = o) as -> by congruence; exact Ho).
  destruct r; try exact (Hg E); try exact (Hs E); try exact (Hi _ E);
    try (destruct (ecma_number_is_nan (date_value o)); [exact (Hi _ E) | exact (Ht _ E)]).
  destruct args as [| [n |] args]; cbn [hd] in E; [| | exact (Hi _ E)].
  - assert (o' = mk_date false (tza o) (ecma_date_time_clip number_make_nan)) as -> by congruence. apply fresh_date_sound, time_clip_value. auto with numbers.
  - assert (o' = mk_date false (tza o) (ecma_date_time_clip n)) as -> by congruence. apply fresh_date_sound, time_clip_value. now inversion F.
Qed.

(** ** Routines that read *)

Definition reads (r : date_routine) : bool :=
  match r with
  | TO_STRING | TO_DATE_STRING | TO_TIME_STRING | TO_ISO_STRING | GET_TIME | SET_TIME => true
  | _ => match get_field r (mk_fields 0 0 0 0 0 0 0) 0 with Some _ => true | None => false end
  end.

Lemma reads_field r f f' z z' : get_field r f z = None -> get_field r f' z' = None.
Proof. destruct r; cbn [get_field]; congruence. Qed.

Context (zone_bound : forall t, - ECMA_DATE_MS_PER_DAY <= zone local_tza_impl t <= ECMA_DATE_MS_PER_DAY).

Definition date_formats : list string := ["$W $M $D $Y $h:$m:$s GMT$z$Z"; "$W $M $D $Y"; "$h:$m:$s GMT$z$Z"]%string.

Lemma format_total t format : near_time t -> In format date_formats -> exists text, ecma_date_to_string_format local_tza_impl (number_of_int t) format = Some text.
Proof.
  intros Ht Hin. destruct (fields_of_time t Ht) as (f & V & T). pose proof (year_in_range t f Ht V T) as Hy. destruct V as ((Hm & Hd) & V'). pose proof (conj (conj Hm Hd) V') as V. change (valid_fields f) in V. clear V' Hd.
  pose proof (month_name_length (f_month f) Hm) as Lm. pose proof (day_name_length ((day_of_fields f + 4) mod 7) (Z.mod_pos_bound _ 7 ltac:(lia))) as Ld. destruct (year_width_spec (f_year f) Hy) as [Hw _].
  assert (H : forall text, format_text f (zone local_tza_impl t) (bytes_of_string format) = Some text -> zlength text <= 37 -> exists text, ecma_date_to_string_format local_tza_impl (number_of_int t) format = Some text).
  { intros text E L. exists text. unfold ecma_date_to_string_format. rewrite (format_loop_spec local_tza_impl t f Ht V T (zone_bound t) _ text E). now rewrite (proj2 (Z.leb_le _ _) L). }
  destruct Hin as [<- | [<- | [<- | []]]]; (eapply H; [match goal with |- context [bytes_of_string ?s] => let b := eval vm_compute in (bytes_of_string s) in change (bytes_of_string s) with b end; reflexivity |]); unfold directive_text; cbn [Z.eqb Pos.eqb]; unfold zlength; destruct (f_year f <? 0);
    repeat first [rewrite length_app | rewrite last_digits_length | rewrite Ld | rewrite Lm | progress cbn [List.length app]]; lia.
Qed.

Lemma format_local t : is_time t -> exists text, ecma_date_value_to_string local_tza_impl (number_of_int t) = Some text.
Proof.
  intros Ht. unfold ecma_date_value_to_string. fold (zone local_tza_impl t). pose proof (zone_bound t) as Hz. change ECMA_DATE_MS_PER_DAY with 86400000 in Hz. unfold is_time in Ht. rewrite plus_ints by exact_int.
  apply format_total; [unfold near_time; lia | left; reflexivity].
Qed.

Lemma getter_total r o args : sound_date o -> get_field r (mk_fields 0 0 0 0 0 0 0) 0 <> None ->
  exists res o', ecma_builtin_date_prototype_dispatch_routine local_tza_impl r (Some o) args = Some (res, Some o').
Proof.
  intros Ho Hr. destruct (date_or_nan_time _ (proj1 Ho)) as [Hn | (Hn & t & Ht & Ev)].
  - destruct (get_field r (mk_fields 0 0 0 0 0 0 0) 0) as [v |] eqn:Hg; [| congruence]. rewrite (getter_dispatch local_tza_impl r _ _ v o args Hg). unfold get_with_zone. rewrite (local_tza_sound o Ho), number_plus_nan by exact Hn.
    unfold ecma_builtin_date_prototype_dispatch_get. destruct (BUILTIN_DATE_FUNCTION_IS_UTC r); [rewrite Hn | change (ecma_number_is_nan number_make_nan) with true]; eauto.
  - assert (Hh : holds_time local_tza_impl o t). { split; [exact Ev |]. intros Hs. destruct Ho as [_ H]. rewrite (H Hs), Ev. reflexivity. }
    destruct (fields_of_time (local_time local_tza_impl r t) (local_near local_tza_impl zone_bound r t Ht)) as (f & V & T).
    destruct (get_field r f (zone local_tza_impl t)) as [v |] eqn:Hg; [| apply reads_field with (f' := mk_fields 0 0 0 0 0 0 0) (z' := 0) in Hg; congruence].
    rewrite (getter_spec local_tza_impl zone_bound o t args Ht Hh r f V T v Hg). eauto.
Qed.

Lemma reading_total r o args : sound_date o -> reads r = true ->
  exists res o', ecma_builtin_date_prototype_dispatch_routine local_tza_impl r (Some o) args = Some (res, Some o').
Proof.
  intros Ho Hr. destruct (date_or_nan_time _ (proj1 Ho)) as [Hn | (Hn & t & Ht & Ev)].
  - destruct r; try discriminate Hr; try (apply getter_total; [exact Ho | discriminate]); cbn [ecma_builtin_date_prototype_dispatch_routine]; rewrite ?Hn; try solve [eauto]. destruct (hd _ args); eauto.
  - assert (Hs : forall m, (exists text, m = Some text) -> exists res o', (let? (result, o) := string_result m o in Some (result, Some o)) = Some (res, Some o')) by (intros m (text & ->); cbn; eauto).
    destruct r; try discriminate Hr; try (apply getter_total; [exact Ho | discriminate]); cbn [ecma_builtin_date_prototype_dispatch_routine]; rewrite ?Hn, ?Ev; try (apply Hs); try solve [eauto].
    + now apply format_local.
    + apply format_total; [unfold near_time, is_time in *; lia | right; left; reflexivity].
    + apply format_total; [unfold near_time, is_time in *; lia | right; right; left; reflexivity].
    + destruct (fields_of_time t) as (f & V & T); [unfold near_time, is_time in *; lia |]. rewrite (to_iso_string_spec local_tza_impl t f Ht V T). eauto.
    + destruct (hd _ args); eauto.
Qed.
End Zone.

(** C17: Date objects.  The constructor, from numbers, dates and any text, makes an
    object that holds NaN or a time in range, and every routine leaves one, whatever
    numbers it is called with; an adjustment that the object keeps is the one of its
    time.  On such objects, in a zone less than a day from UTC, every getter,
    setTime and all texts are delivered: no assertion fails, no int32_t overflows,
    and no text is longer than the buffer. *)
Theorem date_objects_sound (local_tza_impl : Z -> option Z) :
  (forall time_now prototype args o, Forall sound_argument args -> time_or_nan (ecma_builtin_date_now_helper time_now) ->
    ecma_builtin_date_dispatch_construct local_tza_impl time_now prototype args = Some (VALUE o) -> sound_date local_tza_impl o) /\
  (forall r o args res o', sound_date local_tza_impl o -> Forall number_argument args ->
    ecma_builtin_date_prototype_dispatch_routine local_tza_impl r (Some o) args = Some (res, Some o') -> sound_date local_tza_impl o') /\
  ((forall t, - ECMA_DATE_MS_PER_DAY <= zone local_tza_impl t <= ECMA_DATE_MS_PER_DAY) ->
    forall r o args, sound_date local_tza_impl o -> reads r = true ->
    exists res o', ecma_builtin_date_prototype_dispatch_routine local_tza_impl r (Some o) args = Some (res, Some o')).
Proof.
  splits.
  - intros time_now prototype args o. apply construct_sound.
  - intros r o args res o'. apply routine_sound.
  - intros Hz r o args. now apply reading_total.
Qed.

(** An hour is added to the second, and the object that two arguments make is sound *)
Lemma date_objects_sound_witness :
  sound_date (fun _ => Some 3600000) (mk_date false 0 (number_of_int 0)) /\
  (exists v, sound_date (fun _ => Some 3600000) (mk_date false 0 v) /\ v = number_of_int 1672527600000) /\
  exists res o', ecma_builtin_date_prototype_dispatch_routine (fun _ => Some 3600000) TO_TIME_STRING (Some (mk_date false 0 (number_of_int 0))) [] = Some (res, Some o').
Proof.
  destruct (date_objects_sound (fun _ => Some 3600000)) as (C & R & T). set (z := fun _ : Z => Some 3600000) in *.
  assert (S0 : sound_date z (mk_date false 0 (number_of_int 0))).
  { apply (C (Some (number_of_int 0)) true []); [constructor | split; [split; vm_compute; congruence |]; right; exists 0; split; [split; vm_compute; congruence | vm_compute; reflexivity] | vm_compute; reflexivity]. }
  split; [exact S0 |]. split.
  - exists (number_of_int 1672527600000). split; [| reflexivity]. apply (R SET_FULL_YEAR (mk_date false 0 (number_of_int 1672527600000)) [Some (number_of_int 2023)] (A_NUMBER (number_of_int 1672527600000))).
    + split; [| discriminate]. split; [split; vm_compute; congruence |]. right. exists 1672527600000. split; [split; vm_compute; congruence | reflexivity].
    + repeat constructor; vm_compute; congruence.
    + vm_compute. reflexivity.
  - apply T; [intros t; vm_compute; split; congruence | exact S0 | reflexivity].
Defined.

(** ** Where the code departs from what it means to do *)

(** A zone that goes one hour ahead at the epoch *)
Definition two_offsets (time : Z) : option Z := if number_lt time (number_of_int 0) then Some 36000000 else Some 39600000.

(** What toDateString prints for fields *)
Definition date_text (f : fields) : list Z := day_name f ++ 32 :: month_name f ++ 32 :: two (f_date f) ++ 32 :: year_text (f_year f).

Lemma short_text local_tza_impl t f format text : is_time t -> valid_fields f -> time_of f = t -> - ECMA_DATE_MS_PER_DAY <= zone local_tza_impl t <= ECMA_DATE_MS_PER_DAY ->
  format_text f (zone local_tza_impl t) (bytes_of_string format) = Some text -> zlength text <= 37 -> ecma_date_to_string_format local_tza_impl (number_of_int t) format = Some text.
Proof.
  intros Ht V T Hz E L. unfold ecma_date_to_string_format. rewrite (format_loop_spec local_tza_impl t f ltac:(unfold near_time, is_time in *; lia) V T Hz _ text E).
  now rewrite (proj2 (Z.leb_le _ _) L).
Qed.

Lemma short_text_lengths t f z : is_time t -> valid_fields f -> time_of f = t -> zlength (date_text f) <= 37 /\ zlength (clock_text f (zone_text z)) <= 37.
Proof.
  intros Ht V T. pose proof (year_in_range t f ltac:(unfold near_time, is_time in *; lia) V T) as Hy. destruct V as ((Hm & _) & _). pose proof (month_name_length (f_month f) Hm) as Lm.
  pose proof (day_name_length ((day_of_fields f + 4) mod 7) (Z.mod_pos_bound _ 7 ltac:(lia))) as Ld. destruct (year_width_spec (f_year f) Hy) as [Hw _].
  unfold date_text, clock_text, zone_text, year_text, two, zlength. change (bytes_of_string " GMT") with [32; 71; 77; 84]. fold (day_name f) in Ld. fold (month_name f) in Lm. destruct (f_year f <? 0); split;
    repeat first [rewrite length_app | rewrite last_digits_length | rewrite Ld | rewrite Lm | progress cbn [List.length]]; lia.
Qed.

(** C18: The texts of toDateString and toTimeString, in any zone at most a day from UTC: the date
    and the clock of the time itself, in UTC, where the language has those of the local time;
    behind the clock they have the offset of the zone, as if it were a local time. *)
Theorem date_short_texts_utc (local_tza_impl : Z -> option Z) t o args : is_time t -> date_value o = number_of_int t ->
  - ECMA_DATE_MS_PER_DAY <= zone local_tza_impl t <= ECMA_DATE_MS_PER_DAY ->
  exists f, valid_fields f /\ time_of f = t /\
    ecma_builtin_date_prototype_dispatch_routine local_tza_impl TO_DATE_STRING (Some o) args = Some (A_STRING (date_text f), Some o) /\
    ecma_builtin_date_prototype_dispatch_routine local_tza_impl TO_TIME_STRING (Some o) args = Some (A_STRING (clock_text f (zone_text (zone local_tza_impl t))), Some o).
Proof.
  intros Ht Ho Hz. assert (He : exact_integer t) by (unfold is_time in Ht; exact_int). destruct (fields_of_time t ltac:(unfold near_time, is_time in *; lia)) as (f & V & T). exists f.
  destruct (short_text_lengths t f (zone local_tza_impl t) Ht V T) as [L1 L2]. splits; try assumption; cbn [ecma_builtin_date_prototype_dispatch_routine]; rewrite Ho, nan_int by exact He.
  - unfold ecma_date_value_to_date_string. rewrite (short_text local_tza_impl t f _ (date_text f) Ht V T Hz); [reflexivity | | exact L1]. unfold date_text. rewrite <- (app_nil_r (year_text (f_year f))). reflexivity.
  - unfold ecma_date_value_to_time_string. rewrite (short_text local_tza_impl t f _ (clock_text f (zone_text (zone local_tza_impl t))) Ht V T Hz); [reflexivity | | exact L2].
    unfold zone_text. rewrite <- (app_nil_r (two (Z.abs (zone local_tza_impl t) mod 3600000 / 60000))). reflexivity.
Qed.

(** One hour east, a second before midnight in UTC *)
Lemma date_short_texts_utc_witness : exists f, time_of f = 86399000 /\
    ecma_builtin_date_prototype_dispatch_routine (fun _ => Some 3600000) TO_DATE_STRING (Some (mk_date false 0 (number_of_int 86399000))) [] = Some (A_STRING (date_text f), Some (mk_date false 0 (number_of_int 86399000))) /\
    ecma_builtin_date_prototype_dispatch_routine (fun _ => Some 3600000) TO_TIME_STRING (Some (mk_date false 0 (number_of_int 86399000))) [] =
      Some (A_STRING (clock_text f (zone_text 3600000)), Some (mk_date false 0 (number_of_int 86399000))).
Proof.
  destruct (date_short_texts_utc (fun _ => Some 3600000) 86399000 (mk_date false 0 (number_of_int 86399000)) []) as (f & _ & T & E1 & E2); [unfold is_time; lia | reflexivity | split; vm_compute; discriminate |].
  exists f. auto.
Defined.

(** Faults of the date functions.  toTimeString and toDateString print the fields
    of the time in UTC, with the offset of the zone, while the getters and toString
    are in local time.  A local time is taken to UTC by the offset at that number
    taken for a time in UTC, so that near a change of the offset the constructor
    makes 4 o'clock of 5, which another time has.  A year or a month that is far out
    of range overflows an int32_t, where NaN is due.  The year "-000000" is read
    as the year 0. *)
Example date_faults :
  (ecma_builtin_date_prototype_dispatch_routine (fun _ => Some 3600000) TO_TIME_STRING (Some (mk_date false 0 (number_of_int 86399000))) [] =
     Some (A_STRING (bytes_of_string "23:59:59 GMT+0100"), Some (mk_date false 0 (number_of_int 86399000))) /\
   ecma_builtin_date_prototype_dispatch_routine (fun _ => Some 3600000) TO_DATE_STRING (Some (mk_date false 0 (number_of_int 86399000))) [] =
     Some (A_STRING (bytes_of_string "Thu Jan 01 1970"), Some (mk_date false 0 (number_of_int 86399000))) /\
   ecma_builtin_date_prototype_dispatch_routine (fun _ => Some 3600000) TO_STRING (Some (mk_date false 0 (number_of_int 86399000))) [] =
     Some (A_STRING (bytes_of_string "Fri Jan 02 1970 00:59:59 GMT+0100"), Some (mk_date false 0 (number_of_int 86399000)))) /\
  (let five := map (fun z => mk_argument None None (Some (number_of_int z)) None) [1970; 0; 1; 5] in
   let hours o := let? (result, _) := ecma_builtin_date_prototype_dispatch_routine two_offsets GET_HOURS (Some o) [] in Some result in
   (let? made := ecma_builtin_date_dispatch_construct two_offsets None true five in match made with VALUE o => hours o | ERROR => None end) = Some (A_NUMBER (number_of_int 4)) /\
   hours (mk_date false 0 (number_of_int (-18000000))) = Some (A_NUMBER (number_of_int 5))) /\
  (ecma_builtin_date_utc [Some (number_of_int 6000000); Some (number_of_int 0)] = None /\ ecma_builtin_date_utc [Some (number_of_int 2000); Some (number_of_int 30000000000)] = None) /\
  ecma_builtin_date_parse two_offsets (bytes_of_string "-000000-01-01T00:00:00Z") = Some (number_of_int (-62167219200000)).
Proof. vm_compute. repeat split. Qed.
